(* ===== verification/_CoqProject ===== *)
-Q . S2P
Prelude.v
CoreTypes.v
Debug.v
Resources.v
Identity.v
Ipc.v
Policy.v
Queue.v
AuditLogs.v
Faults.v
Sched.v
SchedProps.v
Smp.v
AddrSpace.v
SyscallGate.v
Kernel.v
UserTask.v
Executable.v
KernelSpec.v
KernelProps.v
BudgetProps.v
MsgProps.v
RunProps.v
SyscallProps.v
ExecProps.v
Storage.v
StorageProps.v
BlockStore.v
BlockProps.v
Lifecycle.v
Pipeline.v
PipelineProps.v
Jobs.v
JobsProps.v
Input.v
InputProps.v
Consensus.v
ConsensusProps.v
Editor.v
EditorProps.v
Network.v
NetworkProps.v
Raster.v
RasterProps.v
Views.v
Layout.v
Compositor.v
CompositorProps.v
TextRender.v
Text.v
BareMem.v
BareMemProps.v
BareIo.v
BareIoProps.v
BareKernel.v
BareKernelProps.v
BareSession.v
Console.v
Packages.v
Settings.v
Palette.v
Commands.v
CommandsProps.v
FsView.v
Picker.v
EditorVi.v
ViEditor.v
ViProps.v
Paging.v
Timers.v
Virtio.v
PipelineHost.v
Workspace.v
WorkspaceProps.v
CliConsole.v
VgaConsole.v
FbConsole.v
BareFs.v
BareWorkspace.v
BareWorkspaceProps.v
