(* ===== verification/Prelude.v ===== *)
(** * PandaGen: a verification development of the simulated kernel and its services

    PandaGen is an operating system in Rust.  Its core is a capability kernel whose
    behaviour is defined by the crate [sim_kernel] (a deterministic, in-process kernel
    that implements the trait [KernelApi]) and by the crates it is built from:
    [core_types], [kernel_api], [ipc], [identity], [resources] and [policy].  On it run
    services with state machines of their own: storage, pipelines, jobs, process
    supervision, input, networking, replication, an editor, a workspace with its views,
    windows, commands, settings and packages.  The crate [kernel_bootstrap] is a second,
    small kernel for the bare machine.  This library models the core, these services and
    the small kernel as Rocq functions and proves what they promise.

    ** The parts and how they interact

    A program talks to the kernel through system calls (the gate, [syscall_gate.rs], or
    the trap of a user task, [user_task.rs]) or directly through [KernelApi].  The kernel
    ([sim_kernel/src/lib.rs]) keeps tasks with execution identities, a table of
    capabilities (owner, status, lease), channels with bounded queues and access lists,
    services with schema policies, resource budgets per identity, a timer, a scheduler
    (single-core, [scheduler.rs], or multi-core, [smp.rs]) and address spaces
    ([address_space.rs]).  A policy engine ([policy]) is asked before delegations and
    spawns, a fault injector ([fault_injection.rs]) may drop, delay or reorder messages,
    and four append-only logs record what happened.

    The storage service keeps objects in versions under transactions, in memory with a
    journal or on a block device with a commit log, and charges the kernel's budgets.  The
    pipeline executor sends typed payloads from stage to stage over kernel channels under
    policies, deadlines and cancellation.  The process manager starts services as kernel
    tasks and restarts them when they exit; the job scheduler runs cooperative jobs.  Keys
    travel from the PS/2 controller through the scan-code translator and the input service,
    which knows the subscriptions, into a kernel channel; the focus manager decides who
    holds the keyboard.  Consensus nodes replicate a log, device logs are merged, and the
    editor is a state machine over keys.  Packets pass the network service under policies and
    budgets, and a remote client calls a handler through it under capabilities.

    In the workspace a component owns views in the view host, which only its handles can
    change; the layout puts each component into one tab of a tile; the compositor draws the
    tiles as windows through the rasterizer, and the text renderer sends changed lines only.
    Consoles turn keys into commands, which the command surface parses; the palette, the key
    bindings, the settings and the notifications serve them.  Packages become launch plans,
    and measured boot checks what was loaded.  The workspace manager ties these together: it
    launches components (editors, consoles, pickers, pipelines), gives each two views, an input
    subscription and a tab, routes keys, executes commands and keeps settings in storage.  The
    editor component edits documents of the storage service; file views give objects paths.

    On the bare machine, boot builds a frame allocator and a heap from the memory map and
    installs interrupt handlers; the keyboard interrupt fills a queue that the main loop
    empties; the kernel runs a console service and a command service as cooperative tasks that
    talk over ring-buffer channels.  A session on the machine takes the bytes of the keyboard to
    a command line, a CLI, a palette or an editor, with files on a RAM disk or a virtio disk, and
    shows them on a VGA or frame-buffer console.

    ** Files

    - [Prelude.v] (this file): results, outcomes, machine integers, the containers of the
      Rust standard library, UUIDs, record update, and the lemmas shared by all.
    - [CoreTypes.v]: [core_types/src/*.rs], [kernel_api/src/{time,error,kernel}.rs].
    - [Debug.v]: the derived [Debug] texts that end up in errors and logs.
    - [Resources.v], [Identity.v], [Ipc.v], [Policy.v]: the crates of these names.
    - [Queue.v]: [message_queue.rs] and [timer.rs]; the interface [BoundedFifo].
    - [AuditLogs.v]: the capability, resource and policy logs.
    - [Faults.v]: [fault_injection.rs].
    - [Sched.v], [SchedProps.v]: [scheduler.rs], and its theorems.
    - [Smp.v]: [smp.rs], and its theorems.
    - [AddrSpace.v]: [address_space.rs] and [page_table_bridge.rs], and their theorems.
    - [SyscallGate.v]: [syscall_gate.rs], over the classes [KernelApi] and [MemoryOps]
      (the traits of these names), which [Kernel.v] instantiates.
    - [Kernel.v]: [sim_kernel/src/lib.rs], the type [SimulatedKernel] with its operations.
    - [UserTask.v]: [user_task.rs], and system calls as messages ([kernel_api/src/syscalls.rs]).
    - [Executable.v], [ExecProps.v]: [executable.rs] and the launch of programs, and
      their theorems.
    - [KernelSpec.v]: an abstract machine with guarded actions over the part of the kernel
      state that matters for safety, and the proof that every operation refines it.
    - [KernelProps.v]: invariants of the machine and what they say about every history
      of kernel calls: time and capabilities.
    - [BudgetProps.v], [MsgProps.v], [RunProps.v], [SyscallProps.v]: theorems about
      budgets, messages, the scheduling loops and the system-call boundary.
    - [Storage.v], [StorageProps.v]: [services_storage/src/{object,transaction,
      journaled_storage,permissions,migration,lib}.rs], [core_types/src/storage_schema.rs].
    - [BlockStore.v], [BlockProps.v]: [hal/src/block_device.rs] and
      [services_storage/src/{failing_device,block_storage,persistent_fs}.rs]; the classes
      [BlockDevice] and [StorageJson] with their specifications.
    - [Lifecycle.v]: [lifecycle] and [services_registry].
    - [Pipeline.v], [PipelineProps.v]: [pipeline] and [services_pipeline_executor].
    - [Jobs.v], [JobsProps.v]: [services_job_scheduler] and [services_process_manager].
    - [Input.v], [InputProps.v]: [input_types], the keyboard parts of [hal] and
      [hal_x86_64], [services_input], [services_focus_manager],
      [services_input_hal_bridge] over the class [KernelApiV0].
    - [Consensus.v], [ConsensusProps.v]: [distributed_storage].
    - [Editor.v], [EditorProps.v]: [editor_core].
    - [Network.v], [NetworkProps.v]: [services_network] and [remote_ipc].
    - [Raster.v], [RasterProps.v]: [graphics_rasterizer], over the class [RenderTarget].
    - [Views.v]: [view_types] and [services_view_host], and their theorems.
    - [Layout.v]: the tiles and tabs of [services_workspace_manager/src/lib.rs].
    - [Compositor.v], [CompositorProps.v]: [services_gui_host].
    - [TextRender.v]: [text_renderer_host].
    - [Text.v]: UTF-8, lower case and words, as the standard library has them.
    - [BareMem.v], [BareIo.v], [BareKernel.v] with [BareMemProps.v], [BareIoProps.v],
      [BareKernelProps.v], [BareSession.v]: [kernel_bootstrap/src/main.rs]: memory;
      interrupts, ports, keyboard and parser; messages, channels, scheduler, services and
      the kernel, over the class [LawfulPlatform].
    - [Console.v]: the consoles and custom hosts of [services_workspace_manager/src/lib.rs].
    - [Packages.v]: [packages], [package_registry], [secure_boot], [services_app_store].
    - [Settings.v]: [services_settings] and [services_notification].
    - [Palette.v]: [services_command_palette] and
      [services_workspace_manager/src/keybindings.rs].
    - [Commands.v], [CommandsProps.v]: [services_workspace_manager/src/{command_surface,
      commands,workspace_status,help,command_registry}.rs].
    - [FsView.v]: [fs_view] and [services_fs_view]; [Picker.v]: [services_file_picker]; with
      their theorems.
    - [EditorVi.v], [ViEditor.v], [ViProps.v]: [services_editor_vi]: the state, then documents,
      commands and views, over the class [EditorIo].
    - [Paging.v], [Timers.v], [Virtio.v]: [hal_x86_64/src/paging.rs]; its timers, ticks,
      interrupts and [hal/src/{timer,interrupts}.rs]; [hal_x86_64/src/{virtio,virtio_blk}.rs];
      with their theorems.
    - [PipelineHost.v], [Workspace.v], [WorkspaceProps.v]: the manager of
      [services_workspace_manager/src/{lib,commands,boot_profile}.rs].
    - [CliConsole.v]: [cli_console]; [VgaConsole.v]: [console_vga] and the scrollback of
      [console_fb]; [FbConsole.v]: the rest of [console_fb] and [hal/src/framebuffer.rs]; with
      their theorems.
    - [BareFs.v], [BareWorkspace.v], [BareWorkspaceProps.v]: [kernel_bootstrap/src/
      {bare_metal_storage,bare_metal_editor_io,palette_overlay,minimal_editor,workspace}.rs]; the
      class [BareFiles] with its specification [BareFilesSpec], which the file system fulfils
      and the session relies on.

    A Rust type is a [Module] of its name with the type [t], its constructors or fields
    and its methods; a comment before each definition gives the source lines.

    ** How the code is modelled

    A method that takes [&mut self] becomes a function from the old state to its result
    and the new state.  [Result] is [result]; a computation that can panic or loop is an
    [outcome] with the values [Return], [Panic] and [Diverge].  [u64] and [usize] are
    [N]: an operation that checks, saturates, wraps or panics at the bound does so in the
    model, and the theorems that need a value to be in range say so.  [HashMap] is [gmap];
    whatever iterates over one takes the order as a parameter (class [HashOrder]), so the
    theorems hold for every order.  UUIDs drawn by [Uuid::new_v4] (a third-party crate)
    are arguments of the operation that draws them, and their textual forms are a
    parameter (class [UuidFormat]); theorems that need a drawn task identifier to be
    unused assume it ([KOp.fresh]).  [std]'s [DefaultHasher] is a parameter too.  A
    policy engine is any record of the two operations of the trait [PolicyEngine].

    Loops that are not structural take fuel: the deadline loop of the scheduler
    ([refresh_fuel], the number of periods up to the current tick plus two, proved to be
    enough below the largest tick) and the loops of [run_for_ticks] (the requested ticks
    plus one, proved to be enough when the quantum is positive) and the retry loop of the
    pipeline executor (the retries of the stage plus one, proved to be enough), the loop that
    frees a chain of descriptors (65,536, as many as a counter of sixteen bits can reach, proved
    to be enough), the polling loop of the block driver (the bound of the source) and the search
    for a path ([path_fuel], the number of directories plus two, proved to be enough).  Running out of
    fuel is [Diverge], and the theorems that say a loop returns say it returns [Return].

    Code that is not part of the repository is a class with its documented laws as a second
    class: [StorageJson], [BootJson] and [HandlerCodec] (JSON), [VirtioBus] and [PortIo] (device
    registers), [SerialLine], [StdFormat] (floating-point and key texts), [Identifiers] (the
    identifiers that are drawn).  Traits of the repository are classes too, with the modelled
    implementations as instances: [EditorIo], [DirectoryResolver], [BareFiles], [RenderTarget].

    ** What the theorems show

    - Refinement ([KernelSpec.v], [KernelSafety.kernel_refines_machine]): every kernel
      call, whatever it returns, is a sequence of guarded actions of the machine.
    - Capabilities ([KernelSafety]): when one is valid; that revocation, dropping, the
      end of a lease and the end of the owner are final; that delegation moves authority
      and asks the policy engine; that the clock is consistent.
    - Budgets ([BudgetSafety], [ResourceSpec]): usage never exceeds a budget in any
      history whose identities are registered within theirs; the outcome of each charge on
      every branch; cancellation is final for every charge but that of memory.
    - Messages ([MessageSafety], [QueueSpec], [FaultSpec], [SchemaSpec]): a channel is a
      reliable bounded FIFO over any history without faults; forbidden messages have no
      effect; delayed messages are conserved; reordering permutes.
    - Scheduling ([SchedSpec], [SmpSpec], [RunSafety]): no task is lost or run twice,
      round robin does not starve, earliest deadline first, exact wake-ups, admission
      control, one core per task, termination of the scheduling loops.
    - Memory ([AddrSpaceSpec]): only the execution a space was created for accesses or
      allocates its regions; a destroyed space stays dead.
    - Policies ([PolicySpec]): composed engines allow exactly what all allow and never
      confer more authority than each.
    - Executables ([ExecSpec]): the parser accepts exactly the documented format and
      panics only on an overflowing size; a rejected file leaves the kernel alone.
    - The boundary ([SyscallSafety]): the gate's audit log is a complete transcript and the gate
      is transparent, stated against direct calls of the [KernelApi] methods.
    - Storage ([StorageSpec], [BlockSpec]): the journaled store is an atomic multi-version
      store under crashes at any moment; the block store finds every successful commit again
      after device failures, while its log has room; a failed commit cannot be retried; files read back; budgets bound the service; migrations compose
      the registered steps.
    - Pipelines ([PipelineSafety]): runs end, are typed, permitted and traced.  The registry
      ([LifecycleSpec]) stays consistent.
    - Jobs and processes ([JobSpec], [ManagerSpec]): one queue per priority, nothing lost,
      everything that ends is finished; restarts are bounded by the policies.
    - Input ([KeyboardSpec], [InputSpec], [FocusSpec], [BridgeSpec]): the scan-code stream
      round trips, modifiers are the held keys, revocation is final, the audit trail
      determines the focus, one message per key.
    - Replication ([VoteSpec], [LogSpec], [ClusterSpec], [SyncSpec]): one winner per term,
      log matching, the cluster as one shared log, convergence of merged replicas.
    - The editor ([EditorSafety], [SavedSpec], [UndoSpec], [SearchSpec], [BufferSpec]): no
      panic on ASCII text, nothing lost on exit, undo and redo, true search reports, round
      trips of saving and of editing.

    - Networking ([FrameSpec], [NetworkSpec], [RemoteSpec]): the frame decoder accepts exactly
      the encodings, the service is a family of queues within its budget, a remote call is a
      guarded call.  System calls that travel as messages are calls of the kernel
      ([MessageCallSpec]).
    - Drawing ([RasterProps], [DamageSpec], [CanvasSpec], [TileSpec], [TextRenderSpec]): what
      each primitive writes, redrawing the damage is exact, the topmost window wins, tiles
      partition the surface, line updates are enough.
    - Views and layout ([ViewSpec], [LayoutSpec]): only the owner changes a view, every
      component is in one tab.
    - Consoles and commands ([ConsoleSpec], [ParseSpec], [PromptSpec], [HistorySpec],
      [RegistrySurface]): typed text is the command, printing and parsing round trip, the
      prompt agrees with the parser, the recent lists hold the latest.
    - Palette, bindings, settings, notifications ([PaletteSpec], [BindingSpec], [SettingsSpec],
      [PersistenceSpec], [NotificationSpec]): ranking, persistence, effective values, expiry.
    - Packages and boot ([ManifestSpec], [RegistrySpec], [BootSpec], [StoreSpec]): which
      manifests launch, what hashes identify, which boots are attested.
    - The bare-metal kernel (in [BareMemProps.v] [FrameSpec], [HeapSpec], [MemorySpec]; in
      [BareIoProps.v] [QueueSpec], [ParserSpec], [PromptSpec], [IdtSpec]; [ChannelSpec],
      [RoundRobinSpec], [ServiceSpec], [SessionSpec]): frames and blocks are private, the
      keyboard queue survives interruption, the parser agrees with the other keyboard path,
      channels are queues, and typed lines whose commands return are answered.
    - Files by path and pickers ([FsProps], [PickerProps]): linking adds one directory entry and
      unlinking takes it back, splitting is the inverse of joining, a picker lists its directory.
    - The editor service ([ViProps]): its text operations are those of the core, saved documents
      open again (without an empty last line), undo takes insertions back, no panic on ASCII text.
    - The workspace manager ([WorkspaceSpec], [SearchSpec] of [WorkspaceProps.v]): after any
      history the layout, the instances and the views are those of the running components; the
      search for a path ends and is right.
    - Hardware ([PagingProps], [PitSpec], [IrqSpec], [TickSpec], [VirtioSpec]): entries keep
      addresses and permissions, timers count, interrupts run their handlers, every session with
      the block driver is answered and requests reach the device, which reads them from
      memory through the descriptors, as they were meant.
    - Consoles ([LineProps], [CommandProps], [VgaProps], [ScrollProps], [FbSpec]): the console is
      a line editor, writes stay in the buffer, the scrollback shows the last lines, incremental
      redrawing of the editor is exact.
    - The bare-metal session ([BareFsSpec], [BareSessionSpec]): the files are a map, the log shows
      the last lines, and a session runs to the end of its input.

    Some theorems state behaviour that the code's own documentation does not intend (a
    task stranded when its slice is cut short, a refused allocation that is charged,
    memory given to a cancelled identity, a spawned child that is never limited, the deadline
    loop at the largest tick, commits lost by a full log, exits lost behind a refused restart, a leader demoted by its own
    write, a stale entry committed by a heartbeat, a panic after a two-byte character, a
    closed component that regains the focus, a ninth save that loses the file, an editor that
    drops letters of its commands).

    ** What is not modelled

    The contents of memory and page tables beyond the calls of [page_table_bridge.rs] and
    [paging.rs]; inline assembly and privileged instructions; the drawing of [kernel_bootstrap]
    to volatile memory ([framebuffer.rs], [optimized_render.rs]), of which [console_fb] is the
    modelled counterpart; the host process [pandagend], which is terminal input and output; the
    banner and the colour themes of the consoles; thin services that no other part calls
    ([services_device_manager], [intent_router], [workspace_access], [services_remote_ui_host]);
    tests, fakes for tests, examples and build tools.  [serde_json], SHA-256, the checksum of the
    commit log, the tables of Unicode lower case and the drawing and text of UUIDs are
    third-party code or data and parameters. *)

From Stdlib Require Export Lia.
From stdpp Require Export base gmap sets strings pretty countable numbers sorting list.

(** ** Rust results *)

(** [Result<T, E>]. *)
Inductive result (T E : Type) : Type :=
| Ok (t : T)
| Err (e : E).
Arguments Ok {T E} t.
Arguments Err {T E} e.

Definition is_ok {T E} (r : result T E) : bool :=
  match r with Ok _ => true | Err _ => false end.

Definition is_err {T E} (r : result T E) : bool := negb (is_ok r).

Definition map_ok {T U E} (f : T → U) (r : result T E) : result U E :=
  match r with Ok t => Ok (f t) | Err e => Err e end.

Definition map_err {T E F} (f : E → F) (r : result T E) : result T F :=
  match r with Ok t => Ok t | Err e => Err (f e) end.

Definition ok_or {T E} (o : option T) (e : E) : result T E :=
  match o with Some t => Ok t | None => Err e end.

(** ** Outcomes

    What running a piece of Rust code can end in: a value, a panic (the
    workspace builds with [panic = "abort"], so a panic ends the program), or a
    loop that never ends.  Arithmetic is the arithmetic of the [dev]/[test]
    profile, in which an overflowing [+], [*] or [-] panics. *)
Inductive outcome (A : Type) : Type :=
| Return (a : A)
| Panic
| Diverge.
Arguments Return {A} a.
Arguments Panic {A}.
Arguments Diverge {A}.

#[export] Instance outcome_ret : MRet outcome := λ A a, Return a.
#[export] Instance outcome_bind : MBind outcome := λ A B f m,
  match m with Return a => f a | Panic => Panic | Diverge => Diverge end.
#[export] Instance outcome_fmap : FMap outcome := λ A B f m,
  match m with Return a => Return (f a) | Panic => Panic | Diverge => Diverge end.

Definition returns {A} (m : outcome A) : Prop := ∃ a, m = Return a.

(** The value of an [Option]/overflow check on which the code panics. *)
Definition expect {A} (o : option A) : outcome A :=
  match o with Some a => Return a | None => Panic end.

(** The operator [?] on a stateful computation: an [Err] is returned at once,
    together with the state reached so far. *)
Definition try_bind {T U E S} (m : outcome (result T E * S))
    (k : T → S → outcome (result U E * S)) : outcome (result U E * S) :=
  match m with
  | Return (Ok t, s) => k t s
  | Return (Err e, s) => Return (Err e, s)
  | Panic => Panic
  | Diverge => Diverge
  end.
Notation "'try!' x , s ':=' m 'in' k" := (try_bind m (λ x s, k))
  (at level 10, x binder, s binder, m at level 100, k at level 200).

(** A [for] loop over [l] whose body can panic. *)
Fixpoint fold_outcome {S A} (f : S → A → outcome S) (l : list A) (s : S) : outcome S :=
  match l with
  | [] => Return s
  | a :: l' => s' ← f s a; fold_outcome f l' s'
  end.

(** ** Machine integers

    [u64] and [usize] values are [N]; the bound is an invariant stated where it
    matters, and every operation of the source that checks, saturates or panics
    at the bound is written out. *)
Definition u64_max : N := 18446744073709551615.
Definition u64_ok (n : N) : Prop := (n ≤ u64_max)%N.

Definition checked_add (a b : N) : option N :=
  if (a + b <=? u64_max)%N then Some (a + b)%N else None.
Definition checked_sub (a b : N) : option N :=
  if (b <=? a)%N then Some (a - b)%N else None.
Definition saturating_add (a b : N) : N := N.min (a + b) u64_max.
Definition saturating_sub (a b : N) : N := (a - b)%N.
Definition saturating_mul (a b : N) : N := N.min (a * b) u64_max.

(** The operators [+], [*], [-] and [/] on [u64] in a checked build. *)
Definition add_u64 (a b : N) : outcome N := expect (checked_add a b).
Definition sub_u64 (a b : N) : outcome N := expect (checked_sub a b).
Definition mul_u64 (a b : N) : outcome N :=
  if (a * b <=? u64_max)%N then Return (a * b)%N else Panic.
Definition div_u64 (a b : N) : outcome N :=
  if (b =? 0)%N then Panic else Return (a / b)%N.

(** [u64::div_ceil]. *)
Definition div_ceil (a b : N) : N :=
  if (a mod b =? 0)%N then (a / b)%N else (a / b + 1)%N.

(** ** Containers of the standard library *)

(** The iteration order of a [HashMap] is not specified: every definition that
    iterates over one takes the order as a parameter, of which only this much is
    known: each entry is visited exactly once. *)
Class HashOrder := {
  hm_iter : ∀ {K} `{Countable K} {A}, gmap K A → list (K * A);
  hm_iter_perm : ∀ {K} `{Countable K} {A} (m : gmap K A), hm_iter m ≡ₚ map_to_list m
}.

(** One possible order, used to evaluate examples. *)
Definition canonical_order : HashOrder :=
  {| hm_iter K _ _ A m := map_to_list m;
     hm_iter_perm K _ _ A m := Permutation_refl (map_to_list m) |}.

(** [HashMap::values]. *)
Definition hm_values `{HashOrder} `{Countable K} {A} (m : gmap K A) : list A :=
  (hm_iter m).*2.

(** [HashMap::retain] on the values. *)
Definition hm_retain `{Countable K} {A} (P : A → bool) (m : gmap K A) : gmap K A :=
  filter (λ kv, P kv.2 = true) m.

(** A [BTreeMap] iterates in the order of its keys, which [leb] decides. *)
Definition btree_le {K A} (leb : K → K → bool) (a b : K * A) : Prop := leb a.1 b.1 = true.
#[global] Instance btree_le_dec {K A} (leb : K → K → bool) : RelDecision (@btree_le K A leb).
Proof. intros a b. unfold btree_le. apply _. Defined.
Definition btree_iter `{Countable K} {A} (leb : K → K → bool) (m : gmap K A) : list (K * A) :=
  merge_sort (btree_le leb) (map_to_list m).

(** [VecDeque::insert(i, x)] for [i] at most the length. *)
Definition vec_insert {A} (i : nat) (x : A) (l : list A) : list A :=
  take i l ++ x :: drop i l.

(** The last element that satisfies a predicate: [iter().rev().find(..)]. *)
Definition rfind {A} (p : A → bool) (l : list A) : option A :=
  head (filter (λ a, p a = true) (reverse l)).

(** [VecDeque::swap(i, j)]; an index out of range panics in the source, and is
    never passed by it. *)
Definition vec_swap {A} (i j : nat) (l : list A) : list A :=
  match l !! i, l !! j with
  | Some x, Some y => <[j := x]> (<[i := y]> l)
  | _, _ => l
  end.

(** [a[i]] and [a[i] = x] on a slice: out of range, they panic. *)
Definition slice_get {A} (l : list A) (i : N) : outcome A := expect (l !! N.to_nat i).
Definition slice_set {A} (l : list A) (i : N) (x : A) : outcome (list A) :=
  if decide (N.to_nat i < length l) then Return (<[N.to_nat i := x]> l) else Panic.

(** [sort_by] and [sort_by_key]: a stable sort; [leb] compares. *)
Fixpoint sorted_insert {A} (leb : A → A → bool) (a : A) (l : list A) : list A :=
  match l with
  | [] => [a]
  | b :: l' => if leb a b then a :: l else b :: sorted_insert leb a l'
  end.
Definition stable_sort {A} (leb : A → A → bool) (l : list A) : list A :=
  foldr (sorted_insert leb) [] l.

(** The length of a [Vec] or [VecDeque] as a [usize]. *)
Definition len {A} (l : list A) : N := N.of_nat (length l).

Definition sumN (l : list N) : N := foldr N.add 0%N l.

(** ** The [uuid] crate

    Identifiers are UUIDs drawn by [Uuid::new_v4] (a third-party crate).  A UUID
    is a 128-bit number; an operation that draws identifiers takes them as
    arguments, and what it needs of them (that they are not yet in use) is a
    named hypothesis of the theorems.  The textual forms ([Display] and [Debug])
    are parameters. *)
Definition Uuid := N.

Class UuidFormat := { uuid_to_string : Uuid → string; uuid_debug : Uuid → string }.

Definition sample_format : UuidFormat :=
  {| uuid_to_string u := pretty u; uuid_debug u := pretty u |}.

(** ** Record update

    [r <| f := v |>] is [r] with its field [f] set to [v], the reading of the
    source's [r.f = v].  A record type opts in by saying how it is rebuilt from
    its projections. *)
Class Rebuild (R : Type) := rebuild : R → R.
Class Setter {R E : Type} (proj : R → E) := update_field : (E → E) → R → R.
Arguments update_field {R E} proj {_} _ _.

Ltac derive_setter proj :=
  let R := lazymatch type of proj with ?R → _ => R end in
  let inst := constr:(_ : Rebuild R) in
  let body := eval red in inst in
  let abs := eval pattern proj in body in
  lazymatch abs with
  | ?g _ =>
      let setter := eval cbv beta in (λ u, g (λ r, u (proj r))) in
      exact setter
  end.

#[export] Hint Extern 1 (Setter ?proj) => derive_setter proj : typeclass_instances.

Declare Scope record_scope.
Open Scope record_scope.
Notation "r <| f := v |>" := (update_field f (λ _, v) r)
  (at level 1, left associativity, format "r  <| f  :=  v |>") : record_scope.
Notation "r <| f ::= g |>" := (update_field f g r)
  (at level 1, left associativity, format "r  <| f  ::=  g |>") : record_scope.

(** ** Shared lemmas *)
Create HintDb pandagen.

Lemma bind_Return {A B} (m : outcome A) (f : A → outcome B) b :
  (m ≫= f) = Return b ↔ ∃ a, m = Return a ∧ f a = Return b.
Proof. destruct m; simpl; naive_solver. Qed.

Lemma try_bind_Return {T U E S} (m : outcome (result T E * S))
    (k : T → S → outcome (result U E * S)) r s :
  try_bind m k = Return (r, s) ↔
  (∃ t s1, m = Return (Ok t, s1) ∧ k t s1 = Return (r, s)) ∨
  (∃ e, m = Return (Err e, s) ∧ r = Err e).
Proof. destruct m as [[[t|e] s1]| |]; simpl; naive_solver. Qed.

Lemma try_bind_Ok {T U E S} (m : outcome (result T E * S))
    (k : T → S → outcome (result U E * S)) u s :
  try_bind m k = Return (Ok u, s) ↔ ∃ t s1, m = Return (Ok t, s1) ∧ k t s1 = Return (Ok u, s).
Proof. rewrite try_bind_Return. naive_solver. Qed.

(** Loop rule: an invariant of the body is an invariant of the loop. *)
Lemma fold_outcome_ind {S A} (P : S → Prop) (f : S → A → outcome S) (l : list A) s s' :
  P s →
  (∀ s1 a s2, a ∈ l → P s1 → f s1 a = Return s2 → P s2) →
  fold_outcome f l s = Return s' → P s'.
Proof.
  revert s. induction l as [|a l IH]; intros s Hs Hf; simpl; [naive_solver|].
  intros (s1 & Hs1 & Hl)%bind_Return. eapply IH; [|..|done].
  - eapply Hf; [|done..]. apply list_elem_of_here.
  - intros s2 b s3 Hb. apply Hf. by apply list_elem_of_further.
Qed.

Lemma fold_outcome_returns {S A} (P : S → Prop) (f : S → A → outcome S) l s :
  P s → (∀ s1 a, a ∈ l → P s1 → ∃ s2, f s1 a = Return s2 ∧ P s2) →
  ∃ s', fold_outcome f l s = Return s' ∧ P s'.
Proof.
  revert s. induction l as [|a l IH]; intros s Hs Hf; simpl; [eauto|].
  destruct (Hf s a) as (s1 & E1 & H1); [by left|done|]. rewrite E1. simpl.
  apply IH; [done|]. intros s2 b Hb. apply Hf. by right.
Qed.

Lemma fold_outcome_app {S A} (f : S → A → outcome S) l1 l2 s :
  fold_outcome f (l1 ++ l2) s = fold_outcome f l1 s ≫= fold_outcome f l2.
Proof.
  revert s. induction l1 as [|a l1 IH]; intros s; simpl; [done|].
  destruct (f s a); simpl; [apply IH|done..].
Qed.

Lemma rfind_snoc {A} (p : A → bool) l x :
  rfind p (l ++ [x]) = if p x then Some x else rfind p l.
Proof. unfold rfind. rewrite reverse_snoc, filter_cons. by destruct (p x). Qed.

Lemma foldl_ind {S A} (P : S → Prop) (f : S → A → S) (l : list A) s :
  P s → (∀ s1 a, a ∈ l → P s1 → P (f s1 a)) → P (foldl f s l).
Proof.
  revert s. induction l as [|a l IH]; intros s Hs Hf; simpl; [done|].
  apply IH; [apply Hf; [apply list_elem_of_here|done]|].
  intros s1 b Hb. apply Hf. by apply list_elem_of_further.
Qed.

Lemma add_u64_Return a b c : add_u64 a b = Return c ↔ c = (a + b)%N ∧ (a + b ≤ u64_max)%N.
Proof.
  unfold add_u64, checked_add. destruct (N.leb_spec (a + b) u64_max); simpl; naive_solver lia.
Qed.

Lemma mul_u64_Return a b c : mul_u64 a b = Return c ↔ c = (a * b)%N ∧ (a * b ≤ u64_max)%N.
Proof. unfold mul_u64. destruct (N.leb_spec (a * b) u64_max); naive_solver lia. Qed.

Lemma div_u64_Return a b c : div_u64 a b = Return c ↔ b ≠ 0%N ∧ c = (a / b)%N.
Proof. unfold div_u64. destruct (N.eqb_spec b 0); naive_solver. Qed.

Section hash_map.
Context `{HashOrder} `{Countable K} {A : Type}.
Implicit Types m : gmap K A.

Lemma elem_of_hm_iter m k a : (k, a) ∈ hm_iter m ↔ m !! k = Some a.
Proof. rewrite hm_iter_perm. apply elem_of_map_to_list. Qed.

Lemma hm_iter_NoDup_fst m : NoDup (hm_iter m).*1.
Proof. rewrite hm_iter_perm. apply NoDup_fst_map_to_list. Qed.

Lemma elem_of_hm_iter_fst m k : k ∈ (hm_iter m).*1 ↔ is_Some (m !! k).
Proof.
  rewrite list_elem_of_fmap. split.
  - intros ([k' a] & -> & Hk%elem_of_hm_iter). eauto.
  - intros [a Ha]. exists (k, a). by rewrite elem_of_hm_iter.
Qed.

Lemma hm_retain_lookup (P : A → bool) m k a :
  hm_retain P m !! k = Some a ↔ m !! k = Some a ∧ P a = true.
Proof. unfold hm_retain. rewrite map_lookup_filter_Some. done. Qed.
End hash_map.

Lemma btree_iter_perm `{Countable K} {A} (leb : K → K → bool) (m : gmap K A) :
  btree_iter leb m ≡ₚ map_to_list m.
Proof. apply merge_sort_Permutation. Qed.

Lemma elem_of_btree_iter `{Countable K} {A} (leb : K → K → bool) (m : gmap K A) k a :
  (k, a) ∈ btree_iter leb m ↔ m !! k = Some a.
Proof. rewrite btree_iter_perm. apply elem_of_map_to_list. Qed.

Lemma sumN_perm (l k : list N) : l ≡ₚ k → sumN l = sumN k.
Proof. induction 1; simpl; lia. Qed.

Lemma vec_insert_Permutation {A} (i : nat) (x : A) (l : list A) : vec_insert i x l ≡ₚ x :: l.
Proof. unfold vec_insert. rewrite <- Permutation_middle. by rewrite take_drop. Qed.

Lemma slice_get_Return {A} (l : list A) i x : slice_get l i = Return x ↔ l !! N.to_nat i = Some x.
Proof. unfold slice_get, expect. destruct (l !! N.to_nat i); naive_solver. Qed.
Lemma slice_set_Return {A} (l : list A) i x l' :
  slice_set l i x = Return l' ↔ N.to_nat i < length l ∧ l' = <[N.to_nat i := x]> l.
Proof. unfold slice_set. case_decide; naive_solver. Qed.
(** A filter that keeps every element of the list. *)
Lemma filter_keeps_all {A} (P : A → Prop) `{∀ x, Decision (P x)} (l : list A) :
  (∀ x, x ∈ l → P x) → filter P l = l.
Proof.
  induction l as [|x l IH]; intros HP; [done|].
  rewrite filter_cons, decide_True by (apply HP; by left). f_equal. apply IH.
  intros y Hy. apply HP. by right.
Qed.

Lemma sorted_insert_Permutation {A} (leb : A → A → bool) a l : sorted_insert leb a l ≡ₚ a :: l.
Proof. induction l as [|b l IH]; simpl; [done|]. destruct (leb a b); [done|]. rewrite IH. apply perm_swap. Qed.

Lemma stable_sort_Permutation {A} (leb : A → A → bool) l : stable_sort leb l ≡ₚ l.
Proof. induction l as [|a l IH]; simpl; [done|]. by rewrite sorted_insert_Permutation, IH. Qed.

Lemma sorted_insert_Sorted {A} (leb : A → A → bool) a l :
  (∀ x y, leb x y = false → leb y x = true) →
  Sorted (λ x y, leb x y = true) l → Sorted (λ x y, leb x y = true) (sorted_insert leb a l).
Proof.
  intros Htot. induction 1 as [|b l Hl IH Hb]; simpl; [by repeat constructor|].
  destruct (leb a b) eqn:E; [by repeat constructor|]. constructor; [done|].
  destruct l as [|c l]; simpl; [constructor; auto|]. inversion Hb; subst.
  destruct (leb a c); constructor; auto.
Qed.

Lemma stable_sort_Sorted {A} (leb : A → A → bool) l :
  (∀ x y, leb x y = false → leb y x = true) → Sorted (λ x y, leb x y = true) (stable_sort leb l).
Proof. intros Htot. induction l; simpl; [constructor|by apply sorted_insert_Sorted]. Qed.

(** Inserting the entries of a map one by one, with keys and values translated. *)
Section insert_entries.
Context `{Countable K1} `{Countable K2} {A B : Type} (f : K1 → K2) (g : A → B) (Hf : Inj (=) (=) f).
Lemma insert_entries_lookup (l : list (K1 * A)) (m0 : gmap K2 B) k :
  NoDup l.*1 →
  foldl (λ m' '(k, a), <[f k := g a]> m') m0 l !! f k =
  match (list_to_map l : gmap K1 A) !! k with Some a => Some (g a) | None => m0 !! f k end.
Proof.
  revert m0. induction l as [|[k0 a] l IH]; intros m0 Hnd; [done|]. simpl in *. apply NoDup_cons in Hnd as [Hk Hnd].
  rewrite IH by done. destruct (decide (k = k0)) as [->|Hne].
  - rewrite not_elem_of_list_to_map_1 by done. by rewrite !lookup_insert_eq.
  - rewrite !lookup_insert_ne by (intros E; try apply (inj f) in E; congruence). done.
Qed.
Lemma insert_entries_map (l : list (K1 * A)) (m : gmap K1 A) k :
  l ≡ₚ map_to_list m →
  foldl (λ m' '(k, a), <[f k := g a]> m') (∅ : gmap K2 B) l !! f k = g <$> m !! k.
Proof.
  intros Hl. assert (NoDup l.*1) as Hnd by (rewrite Hl; apply NoDup_fst_map_to_list).
  rewrite insert_entries_lookup by done. replace (list_to_map l : gmap K1 A) with m; [by destruct (m !! k)|].
  rewrite <-(list_to_map_to_list m) at 1. by apply list_to_map_proper; [apply NoDup_fst_map_to_list|].
Qed.
End insert_entries.

Lemma insert_entries_id `{Countable K} {A} (l : list (K * A)) (m : gmap K A) :
  l ≡ₚ map_to_list m → foldl (λ m' '(k, a), <[k := a]> m') ∅ l = m.
Proof.
  intros Hl. apply map_eq. intros k.
  etrans; [exact (insert_entries_map (λ k, k) (λ a, a) (λ x y E, E) l m k Hl)|]. by destruct (m !! k).
Qed.
