(* ===== verification/CoreTypes.v ===== *)
(** * Core types

    The identifiers, capability records, memory objects, time and error types
    that every other part of the kernel is written in: [core_types/src/ids.rs],
    [core_types/src/capability.rs], [core_types/src/memory.rs],
    [core_types/src/service_ids.rs], [kernel_api/src/time.rs],
    [kernel_api/src/error.rs], the descriptors of [kernel_api/src/kernel.rs] and
    [ChannelId]/[MessageId] of [ipc/src]. *)

From S2P Require Import Prelude.
Open Scope string_scope.
Open Scope list_scope.
Open Scope N_scope.

(** ** Identifiers *)

(** A long-lived component that offers functionality. *)
Module ServiceId.
(* core_types/src/ids.rs:9-14 ServiceId *)
Record t := mk { uuid : Uuid }.
#[global] Instance eq_dec : EqDecision t.
Proof. solve_decision. Defined.
#[global] Program Instance countable : Countable t := inj_countable' uuid mk _.
Next Obligation. by intros []. Qed.
(* core_types/src/ids.rs:44-48 Display for ServiceId *)
Definition display `{UuidFormat} (id : t) : string :=
  "Service(" +:+ uuid_to_string (uuid id) +:+ ")".
(* core_types/src/ids.rs:27-30 ServiceId::from_u128 *)
Definition from_u128 (value : N) : t := mk value.
End ServiceId.

(** A unit of execution. *)
Module TaskId.
(* core_types/src/ids.rs:50-56 TaskId *)
Record t := mk { uuid : Uuid }.
#[global] Instance eq_dec : EqDecision t.
Proof. solve_decision. Defined.
#[global] Program Instance countable : Countable t := inj_countable' uuid mk _.
Next Obligation. by intros []. Qed.
(* core_types/src/ids.rs:86-90 Display for TaskId *)
Definition display `{UuidFormat} (id : t) : string :=
  "Task(" +:+ uuid_to_string (uuid id) +:+ ")".
End TaskId.

(** The identity under which a task runs. *)
Module ExecutionId.
(* identity/src/lib.rs:38-43 ExecutionId *)
Record t := mk { uuid : Uuid }.
#[global] Instance eq_dec : EqDecision t.
Proof. solve_decision. Defined.
#[global] Program Instance countable : Countable t := inj_countable' uuid mk _.
Next Obligation. by intros []. Qed.
(* identity/src/lib.rs:63-67 Display for ExecutionId *)
Definition display `{UuidFormat} (id : t) : string :=
  "exec:" +:+ uuid_to_string (uuid id).
End ExecutionId.

(** A message channel. *)
Module ChannelId.
(* ipc/src/channel.rs:8-10 ChannelId *)
Record t := mk { uuid : Uuid }.
#[global] Instance eq_dec : EqDecision t.
Proof. solve_decision. Defined.
#[global] Program Instance countable : Countable t := inj_countable' uuid mk _.
Next Obligation. by intros []. Qed.
(* ipc/src/channel.rs:35-39 Display for ChannelId *)
Definition display `{UuidFormat} (id : t) : string :=
  "Channel(" +:+ uuid_to_string (uuid id) +:+ ")".
End ChannelId.

(** A message. *)
Module MessageId.
(* ipc/src/message.rs:10-12 MessageId *)
Record t := mk { uuid : Uuid }.
#[global] Instance eq_dec : EqDecision t.
Proof. solve_decision. Defined.
#[global] Program Instance countable : Countable t := inj_countable' uuid mk _.
Next Obligation. by intros []. Qed.
(* ipc/src/message.rs:39-43 Display for MessageId *)
Definition display `{UuidFormat} (id : t) : string :=
  "Msg(" +:+ uuid_to_string (uuid id) +:+ ")".
End MessageId.

(** An address space. *)
Module AddressSpaceId.
(* core_types/src/memory.rs:27-32 AddressSpaceId *)
Record t := mk { uuid : Uuid }.
#[global] Instance eq_dec : EqDecision t.
Proof. solve_decision. Defined.
#[global] Program Instance countable : Countable t := inj_countable' uuid mk _.
Next Obligation. by intros []. Qed.
(* core_types/src/memory.rs:52-56 Display for AddressSpaceId *)
Definition display `{UuidFormat} (id : t) : string :=
  "aspace:" +:+ uuid_to_string (uuid id).
End AddressSpaceId.

(** A memory region. *)
Module MemoryRegionId.
(* core_types/src/memory.rs:58-60 MemoryRegionId *)
Record t := mk { uuid : Uuid }.
#[global] Instance eq_dec : EqDecision t.
Proof. solve_decision. Defined.
#[global] Program Instance countable : Countable t := inj_countable' uuid mk _.
Next Obligation. by intros []. Qed.
(* core_types/src/memory.rs:80-84 Display for MemoryRegionId *)
Definition display `{UuidFormat} (id : t) : string :=
  "region:" +:+ uuid_to_string (uuid id).
End MemoryRegionId.

(** ** Stable identifiers of the core services ([core_types/src/service_ids.rs]) *)

(* core_types/src/service_ids.rs:5-13 console_service_id *)
Definition console_service_id : ServiceId.t :=
  ServiceId.from_u128 0x2b2f8f834d774d6f9b9f0d8a5c2a9e11.
(* core_types/src/service_ids.rs:15-18 command_service_id *)
Definition command_service_id : ServiceId.t :=
  ServiceId.from_u128 0x3c1a1d5e2f144a4a8e9c7b3c19f07a22.
(* core_types/src/service_ids.rs:20-23 timer_service_id *)
Definition timer_service_id : ServiceId.t :=
  ServiceId.from_u128 0x5d8b2af17d2a4a979c4d2e4b1c7e6b33.
(* core_types/src/service_ids.rs:25-28 input_service_id *)
Definition input_service_id : ServiceId.t :=
  ServiceId.from_u128 0x91a72f0ec9c34d8a8e760e8c9f0a2d4b.

(** ** Time ([kernel_api/src/time.rs]) *)

Module Duration.
(* kernel_api/src/time.rs:50-58 Duration *)
Record t := mk { nanos : N }.
(* kernel_api/src/time.rs:62-64 Duration::from_nanos *)
Definition from_nanos (n : N) : t := mk n.
(* kernel_api/src/time.rs:67-71 Duration::from_micros *)
Definition from_micros (n : N) : outcome t := x ← mul_u64 n 1000; Return (mk x).
(* kernel_api/src/time.rs:74-78 Duration::from_millis *)
Definition from_millis (n : N) : outcome t := x ← mul_u64 n 1000000; Return (mk x).
(* kernel_api/src/time.rs:81-85 Duration::from_secs *)
Definition from_secs (n : N) : outcome t := x ← mul_u64 n 1000000000; Return (mk x).
(* kernel_api/src/time.rs:88-90 Duration::as_nanos *)
Definition as_nanos (d : t) : N := nanos d.
(* kernel_api/src/time.rs:93-95 Duration::as_micros *)
Definition as_micros (d : t) : N := nanos d / 1000.
(* kernel_api/src/time.rs:98-100 Duration::as_millis *)
Definition as_millis (d : t) : N := nanos d / 1000000.
(* kernel_api/src/time.rs:103-105 Duration::as_secs *)
Definition as_secs (d : t) : N := nanos d / 1000000000.
(* kernel_api/src/time.rs:108-114 Duration::add *)
Definition add (a b : t) : outcome t := x ← add_u64 (nanos a) (nanos b); Return (mk x).
(* kernel_api/src/time.rs:116-122 Duration::sub *)
Definition sub (a b : t) : t := mk (saturating_sub (nanos a) (nanos b)).
End Duration.

Module Instant.
(* kernel_api/src/time.rs:6-15 Instant *)
Record t := mk { nanos : N }.
(* kernel_api/src/time.rs:19-21 Instant::from_nanos *)
Definition from_nanos (n : N) : t := mk n.
(* kernel_api/src/time.rs:24-26 Instant::as_nanos *)
Definition as_nanos (i : t) : N := nanos i.
(* kernel_api/src/time.rs:29-31 Instant::duration_since *)
Definition duration_since (i earlier : t) : Duration.t :=
  Duration.from_nanos (saturating_sub (nanos i) (nanos earlier)).
(* kernel_api/src/time.rs:34-40 Instant::add *)
Definition add (i : t) (d : Duration.t) : outcome t :=
  x ← add_u64 (nanos i) (Duration.as_nanos d); Return (from_nanos x).
(* kernel_api/src/time.rs:42-48 Instant::sub *)
Definition sub (i : t) (d : Duration.t) : t :=
  from_nanos (saturating_sub (nanos i) (Duration.as_nanos d)).
End Instant.

(** ** Capabilities ([core_types/src/capability.rs]) *)

(** [Cap<T>]: the marker type [T] is the phantom parameter. *)
Module Cap.
(* core_types/src/capability.rs:35-49 Cap *)
Record t (T : Type) := mk { id : N }.
Arguments mk {T} id.
Arguments id {T} c : rename.
End Cap.

Module CapabilityError.
(* core_types/src/capability.rs:96-105 CapabilityError *)
Inductive t := InvalidCast | Revoked | InsufficientAuthority.
End CapabilityError.

(* core_types/src/capability.rs:71-79 Cap::try_cast *)
Definition try_cast {T} (U : Type) (c : Cap.t T) : result (Cap.t U) CapabilityError.t :=
  Err CapabilityError.InvalidCast.

Module CapabilityInvalidReason.
(* core_types/src/capability.rs:254-269 CapabilityInvalidReason *)
Inductive t :=
| OwnerDead | NeverGranted | TransferredAway | TypeMismatch | Revoked | LeaseExpired.
#[global] Instance eq_dec : EqDecision t.
Proof. solve_decision. Defined.
(** The derived [Debug]. *)
Definition debug (r : t) : string :=
  match r with
  | OwnerDead => "OwnerDead"
  | NeverGranted => "NeverGranted"
  | TransferredAway => "TransferredAway"
  | TypeMismatch => "TypeMismatch"
  | Revoked => "Revoked"
  | LeaseExpired => "LeaseExpired"
  end.
End CapabilityInvalidReason.

Module CapabilityEvent.
(* core_types/src/capability.rs:186-252 CapabilityEvent *)
Inductive t :=
| Granted (cap_id : N) (grantor : option TaskId.t) (grantee : TaskId.t) (cap_type : string)
| Delegated (cap_id : N) (from_task to_task : TaskId.t) (cap_type : string)
| CrossDomainDelegation (cap_id : N) (from_task : TaskId.t) (from_domain : string)
    (to_task : TaskId.t) (to_domain : string)
| Cloned (cap_id : N) (original_owner new_owner : TaskId.t) (cap_type : string)
| Dropped (cap_id : N) (owner : TaskId.t) (cap_type : string)
| InvalidUseAttempt (cap_id : N) (task : TaskId.t) (reason : CapabilityInvalidReason.t)
| Invalidated (cap_id : N) (owner : TaskId.t) (cap_type : string)
| Revoked (cap_id : N) (owner : TaskId.t) (cap_type reason : string)
| LeaseExpired (cap_id : N) (owner : TaskId.t) (cap_type : string) (expired_at_nanos : N).
End CapabilityEvent.

Module CapabilityStatus.
(* core_types/src/capability.rs:271-280 CapabilityStatus *)
Inductive t := Valid | Transferred | Invalid.
#[global] Instance eq_dec : EqDecision t.
Proof. solve_decision. Defined.
End CapabilityStatus.

Module CapabilityMetadata.
(* core_types/src/capability.rs:282-304 CapabilityMetadata *)
Record t := mk {
  cap_id : N;
  owner : TaskId.t;
  cap_type : string;
  status : CapabilityStatus.t;
  grantor : option TaskId.t;
  revoked : bool;
  lease_expires_at_nanos : option N
}.
#[global] Instance rebuild_t : Rebuild t := λ m,
  mk (cap_id m) (owner m) (cap_type m) (status m) (grantor m) (revoked m)
     (lease_expires_at_nanos m).
End CapabilityMetadata.

(** ** Memory objects ([core_types/src/memory.rs]) *)

Module MemoryPerms.
(* core_types/src/memory.rs:86-95 MemoryPerms *)
Record t := mk { read : bool; write : bool; execute : bool }.
#[global] Instance eq_dec : EqDecision t.
Proof. solve_decision. Defined.
(* core_types/src/memory.rs:98-105 MemoryPerms::none *)
Definition none : t := mk false false false.
(* core_types/src/memory.rs:107-114 MemoryPerms::read_only *)
Definition read_only : t := mk true false false.
(* core_types/src/memory.rs:116-123 MemoryPerms::read_write *)
Definition read_write : t := mk true true false.
(* core_types/src/memory.rs:125-132 MemoryPerms::read_execute *)
Definition read_execute : t := mk true false true.
(* core_types/src/memory.rs:134-141 MemoryPerms::all *)
Definition all : t := mk true true true.
(* core_types/src/memory.rs:143-146 MemoryPerms::can_read *)
Definition can_read (p : t) : bool := read p.
(* core_types/src/memory.rs:148-151 MemoryPerms::can_write *)
Definition can_write (p : t) : bool := write p.
(* core_types/src/memory.rs:153-156 MemoryPerms::can_execute *)
Definition can_execute (p : t) : bool := execute p.
(* core_types/src/memory.rs:158-161 MemoryPerms::is_none *)
Definition is_none (p : t) : bool := negb (read p) && negb (write p) && negb (execute p).
End MemoryPerms.

Module MemoryBacking.
(* core_types/src/memory.rs:176-188 MemoryBacking *)
Inductive t := Anonymous | Shared | Device.
End MemoryBacking.

Module MemoryRegion.
(* core_types/src/memory.rs:200-221 MemoryRegion *)
Record t := mk {
  region_id : MemoryRegionId.t;
  size_bytes : N;
  permissions : MemoryPerms.t;
  backing : MemoryBacking.t
}.
(** [MemoryRegion::new] draws the identifier. *)
(* core_types/src/memory.rs:224-232 MemoryRegion::new *)
Definition new (region_id : MemoryRegionId.t) (size_bytes : N) (permissions : MemoryPerms.t)
    (backing : MemoryBacking.t) : t := mk region_id size_bytes permissions backing.
(* core_types/src/memory.rs:234-237 MemoryRegion::can_read *)
Definition can_read (r : t) : bool := MemoryPerms.can_read (permissions r).
(* core_types/src/memory.rs:239-242 MemoryRegion::can_write *)
Definition can_write (r : t) : bool := MemoryPerms.can_write (permissions r).
(* core_types/src/memory.rs:244-247 MemoryRegion::can_execute *)
Definition can_execute (r : t) : bool := MemoryPerms.can_execute (permissions r).
End MemoryRegion.

Module MemoryAccessType.
(* core_types/src/memory.rs:255-263 MemoryAccessType *)
Inductive t := Read | Write | Execute.
#[global] Instance eq_dec : EqDecision t.
Proof. solve_decision. Defined.
End MemoryAccessType.

Module MemoryError.
(* core_types/src/memory.rs:357-386 MemoryError *)
Inductive t :=
| AddressSpaceNotFound (id : AddressSpaceId.t)
| RegionNotFound (id : MemoryRegionId.t)
| PermissionDenied (region_id : MemoryRegionId.t) (access_type : MemoryAccessType.t)
    (permissions : MemoryPerms.t)
| InvalidRegionSize (size : N)
| RegionOverlap
| BudgetExhausted (requested available : N)
| CrossSpaceAccess (region_id : MemoryRegionId.t) (owner_space accessor_space : AddressSpaceId.t)
| NoCapability (id : MemoryRegionId.t).
End MemoryError.

Module AddressSpace.
(* core_types/src/memory.rs:275-294 AddressSpace *)
Record t := mk {
  space_id : AddressSpaceId.t;
  regions : list MemoryRegion.t
}.
#[global] Instance rebuild_t : Rebuild t := λ s, mk (space_id s) (regions s).
(* core_types/src/memory.rs:297-303 AddressSpace::new *)
Definition new (id : AddressSpaceId.t) : t := mk id [].
(* core_types/src/memory.rs:310-313 AddressSpace::find_region *)
Definition find_region (region_id : MemoryRegionId.t) (s : t) : option MemoryRegion.t :=
  snd <$> list_find (λ r, MemoryRegion.region_id r = region_id) (regions s).
(* core_types/src/memory.rs:315-327 AddressSpace::add_region *)
Definition add_region (region : MemoryRegion.t) (s : t) : result unit MemoryError.t * t :=
  (Ok tt, s <| regions ::= λ rs, rs ++ [region] |>).
(* core_types/src/memory.rs:329-338 AddressSpace::remove_region *)
Definition remove_region (region_id : MemoryRegionId.t) (s : t) : option MemoryRegion.t * t :=
  match list_find (λ r, MemoryRegion.region_id r = region_id) (regions s) with
  | Some (pos, r) => (Some r, s <| regions ::= delete pos |>)
  | None => (None, s)
  end.
(* core_types/src/memory.rs:340-343 AddressSpace::region_count *)
Definition region_count (s : t) : N := len (regions s).
(* core_types/src/memory.rs:345-348 AddressSpace::total_size_bytes *)
Definition total_size_bytes (s : t) : outcome N :=
  fold_outcome (λ total r, add_u64 total (MemoryRegion.size_bytes r)) (regions s) 0.
End AddressSpace.

Module AddressSpaceCap.
(* core_types/src/memory.rs:434-444 AddressSpaceCap *)
Record t := mk { space_id : AddressSpaceId.t; cap_id : N }.
End AddressSpaceCap.

Module MemoryRegionCap.
(* core_types/src/memory.rs:453-465 MemoryRegionCap *)
Record t := mk { space_id : AddressSpaceId.t; region_id : MemoryRegionId.t; cap_id : N }.
End MemoryRegionCap.

(** ** Kernel errors and descriptors ([kernel_api/src]) *)

Module KernelError.
(* kernel_api/src/error.rs:5-55 KernelError *)
Inductive t :=
| SpawnFailed (msg : string)
| ChannelError (msg : string)
| SendFailed (msg : string)
| ReceiveFailed (msg : string)
| Timeout
| ServiceNotFound (msg : string)
| ServiceAlreadyRegistered (msg : string)
| InsufficientAuthority (msg : string)
| InvalidCapability (msg : string)
| ResourceExhausted (msg : string)
| ResourceBudgetExceeded (resource_type : string) (limit usage : N) (identity operation : string)
| ResourceBudgetExhausted (resource_type : string) (limit usage : N) (identity operation : string).
End KernelError.

Module TaskDescriptor.
(* kernel_api/src/kernel.rs:10-24 TaskDescriptor *)
Record t := mk { name : string; capabilities : list (Cap.t unit) }.
(* kernel_api/src/kernel.rs:27-33 TaskDescriptor::new *)
Definition new (name : string) : t := mk name [].
End TaskDescriptor.

Module TaskHandle.
(* kernel_api/src/kernel.rs:42-51 TaskHandle *)
Record t := mk { task_id : TaskId.t }.
End TaskHandle.
