(* ===== verification/Debug.v ===== *)
(** * Debug formatting

    The text that [format!("{:?}", x)] produces where the kernel stores it: in
    error messages, in the reasons of audit events and in policy audit summaries.
    All of it comes from derived [Debug] implementations. *)

From S2P Require Import Prelude CoreTypes.
Open Scope string_scope.
Open Scope list_scope.
Open Scope N_scope.

Module Debug.
Definition quote : string := String (Ascii.ascii_of_N 34) "".
Definition backslash : string := String (Ascii.ascii_of_N 92) "".

Definition hex_digit (n : N) : string :=
  match String.get (N.to_nat n) "0123456789abcdef" with
  | Some c => String c ""
  | None => ""
  end.
Definition hex_byte (n : N) : string :=
  if n <? 16 then hex_digit n else hex_digit (n / 16) +:+ hex_digit (n mod 16).

(** [char::escape_debug] as [str] uses it.  Characters beyond ASCII are kept as they
    are, which is what it does with printable ones. *)
Definition escape_char (c : Ascii.ascii) : string :=
  let n := Ascii.N_of_ascii c in
  if n =? 0 then backslash +:+ "0"
  else if n =? 9 then backslash +:+ "t"
  else if n =? 10 then backslash +:+ "n"
  else if n =? 13 then backslash +:+ "r"
  else if n =? 34 then backslash +:+ quote
  else if n =? 92 then backslash +:+ backslash
  else if (n <? 32) || (n =? 127) then backslash +:+ "u{" +:+ hex_byte n +:+ "}"
  else String c "".
Fixpoint escape (s : string) : string :=
  match s with
  | "" => ""
  | String c s' => escape_char c +:+ escape s'
  end.

Definition str (s : string) : string := quote +:+ escape s +:+ quote.
Definition number (n : N) : string := pretty n.
Definition boolean (b : bool) : string := if b then "true" else "false".
Definition option {A} (f : A → string) (o : option A) : string :=
  match o with Some a => "Some(" +:+ f a +:+ ")" | None => "None" end.
Definition vec {A} (f : A → string) (l : list A) : string :=
  "[" +:+ String.concat ", " (f <$> l) +:+ "]".
Definition tuple1 (name inner : string) : string := name +:+ "(" +:+ inner +:+ ")".
Definition struct (name : string) (fields : list (string * string)) : string :=
  name +:+ " { " +:+ String.concat ", " ((λ f, f.1 +:+ ": " +:+ f.2) <$> fields) +:+ " }".

(* kernel_api/src/error.rs:6-55 KernelError *)
Definition kernel_error (e : KernelError.t) : string :=
  match e with
  | KernelError.SpawnFailed m => tuple1 "SpawnFailed" (str m)
  | KernelError.ChannelError m => tuple1 "ChannelError" (str m)
  | KernelError.SendFailed m => tuple1 "SendFailed" (str m)
  | KernelError.ReceiveFailed m => tuple1 "ReceiveFailed" (str m)
  | KernelError.Timeout => "Timeout"
  | KernelError.ServiceNotFound m => tuple1 "ServiceNotFound" (str m)
  | KernelError.ServiceAlreadyRegistered m => tuple1 "ServiceAlreadyRegistered" (str m)
  | KernelError.InsufficientAuthority m => tuple1 "InsufficientAuthority" (str m)
  | KernelError.InvalidCapability m => tuple1 "InvalidCapability" (str m)
  | KernelError.ResourceExhausted m => tuple1 "ResourceExhausted" (str m)
  | KernelError.ResourceBudgetExceeded r l u i o =>
      struct "ResourceBudgetExceeded"
        [("resource_type", str r); ("limit", number l); ("usage", number u);
         ("identity", str i); ("operation", str o)]
  | KernelError.ResourceBudgetExhausted r l u i o =>
      struct "ResourceBudgetExhausted"
        [("resource_type", str r); ("limit", number l); ("usage", number u);
         ("identity", str i); ("operation", str o)]
  end.

(* core_types/src/memory.rs:90-95 MemoryPerms *)
Definition memory_perms (p : MemoryPerms.t) : string :=
  struct "MemoryPerms"
    [("read", boolean (MemoryPerms.read p)); ("write", boolean (MemoryPerms.write p));
     ("execute", boolean (MemoryPerms.execute p))].
(* core_types/src/memory.rs:180-188 MemoryBacking *)
Definition memory_backing (b : MemoryBacking.t) : string :=
  match b with
  | MemoryBacking.Anonymous => "Anonymous"
  | MemoryBacking.Shared => "Shared"
  | MemoryBacking.Device => "Device"
  end.
(* core_types/src/memory.rs:258-263 MemoryAccessType *)
Definition memory_access_type (a : MemoryAccessType.t) : string :=
  match a with
  | MemoryAccessType.Read => "Read"
  | MemoryAccessType.Write => "Write"
  | MemoryAccessType.Execute => "Execute"
  end.

Section with_uuid.
Context `{UuidFormat}.
Definition address_space_id (i : AddressSpaceId.t) : string :=
  tuple1 "AddressSpaceId" (uuid_debug (AddressSpaceId.uuid i)).
Definition memory_region_id (i : MemoryRegionId.t) : string :=
  tuple1 "MemoryRegionId" (uuid_debug (MemoryRegionId.uuid i)).
Definition task_id (i : TaskId.t) : string := tuple1 "TaskId" (uuid_debug (TaskId.uuid i)).
Definition service_id (i : ServiceId.t) : string :=
  tuple1 "ServiceId" (uuid_debug (ServiceId.uuid i)).
Definition channel_id (i : ChannelId.t) : string :=
  tuple1 "ChannelId" (uuid_debug (ChannelId.uuid i)).
(* core_types/src/memory.rs:358-386 MemoryError *)
Definition memory_error (e : MemoryError.t) : string :=
  match e with
  | MemoryError.AddressSpaceNotFound i => tuple1 "AddressSpaceNotFound" (address_space_id i)
  | MemoryError.RegionNotFound i => tuple1 "RegionNotFound" (memory_region_id i)
  | MemoryError.PermissionDenied r a p =>
      struct "PermissionDenied"
        [("region_id", memory_region_id r); ("access_type", memory_access_type a);
         ("permissions", memory_perms p)]
  | MemoryError.InvalidRegionSize n => tuple1 "InvalidRegionSize" (number n)
  | MemoryError.RegionOverlap => "RegionOverlap"
  | MemoryError.BudgetExhausted r a =>
      struct "BudgetExhausted" [("requested", number r); ("available", number a)]
  | MemoryError.CrossSpaceAccess r o a =>
      struct "CrossSpaceAccess"
        [("region_id", memory_region_id r); ("owner_space", address_space_id o);
         ("accessor_space", address_space_id a)]
  | MemoryError.NoCapability i => tuple1 "NoCapability" (memory_region_id i)
  end.
(* core_types/src/memory.rs:438-444 AddressSpaceCap *)
Definition address_space_cap (c : AddressSpaceCap.t) : string :=
  struct "AddressSpaceCap"
    [("space_id", address_space_id (AddressSpaceCap.space_id c));
     ("cap_id", number (AddressSpaceCap.cap_id c))].
(* core_types/src/memory.rs:457-465 MemoryRegionCap *)
Definition memory_region_cap (c : MemoryRegionCap.t) : string :=
  struct "MemoryRegionCap"
    [("space_id", address_space_id (MemoryRegionCap.space_id c));
     ("region_id", memory_region_id (MemoryRegionCap.region_id c));
     ("cap_id", number (MemoryRegionCap.cap_id c))].
End with_uuid.

(* core_types/src/capability.rs:42-49 Cap *)
Definition cap (c : Cap.t unit) : string :=
  struct "Cap" [("id", number (Cap.id c)); ("_phantom", "PhantomData<()>")].
(* kernel_api/src/kernel.rs:18-24 TaskDescriptor *)
Definition task_descriptor (d : TaskDescriptor.t) : string :=
  struct "TaskDescriptor"
    [("name", str (TaskDescriptor.name d)); ("capabilities", vec cap (TaskDescriptor.capabilities d))].
(* kernel_api/src/time.rs:54-58 Duration *)
Definition duration (d : Duration.t) : string :=
  struct "Duration" [("nanos", number (Duration.nanos d))].

Example struct_example :
  kernel_error (KernelError.SendFailed "full") =
    "SendFailed(" +:+ quote +:+ "full" +:+ quote +:+ ")".
Proof. reflexivity. Qed.
End Debug.
