(* ===== verification/Resources.v ===== *)
(** * Resource budgets and usage ([resources/src/lib.rs])

    The six resource newtypes, budgets (an optional limit per resource), usage
    counters, and the comparisons the kernel and the identity layer make with
    them.  The theorems say what each comparison decides. *)

From S2P Require Import Prelude CoreTypes.
Open Scope N_scope.

(** ** Quantities

    The source declares the same newtype over [u64] six times, once per
    resource; here the resource is an index, so that quantities of different
    resources have different types. *)
Module ResourceKind.
Inductive t :=
| CpuTicks | MemoryUnits | MessageCount | PacketCount | StorageOps | PipelineStages.
End ResourceKind.

Module Quantity.
(* resources/src/lib.rs:44-50 CpuTicks::new *)
Record t (k : ResourceKind.t) := new { val : N }.
Arguments new {k} val.
Arguments val {k} q : rename.
Section ops.
Context {k : ResourceKind.t}.
Implicit Types a b : t k.
(* resources/src/lib.rs:52-54 CpuTicks::zero *)
Definition zero : t k := new 0.
(* resources/src/lib.rs:56-58 CpuTicks::is_zero *)
Definition is_zero a : bool := val a =? 0.
(* resources/src/lib.rs:60-62 CpuTicks::checked_add *)
Definition checked_add a b : option (t k) := new <$> checked_add (val a) (val b).
(* resources/src/lib.rs:64-66 CpuTicks::checked_sub *)
Definition checked_sub a b : option (t k) := new <$> checked_sub (val a) (val b).
(* resources/src/lib.rs:68-70 CpuTicks::saturating_add *)
Definition saturating_add a b : t k := new (saturating_add (val a) (val b)).
(* resources/src/lib.rs:72-74 CpuTicks::saturating_sub *)
Definition saturating_sub a b : t k := new (saturating_sub (val a) (val b)).
(** The derived [PartialOrd]/[Ord]. *)
Definition leb a b : bool := val a <=? val b.
Definition min a b : t k := if leb a b then a else b.
End ops.
End Quantity.

(* resources/src/lib.rs:41-45 CpuTicks *)
Definition CpuTicks := Quantity.t ResourceKind.CpuTicks.
(* resources/src/lib.rs:83-87 MemoryUnits *)
Definition MemoryUnits := Quantity.t ResourceKind.MemoryUnits.
(* resources/src/lib.rs:125-129 MessageCount *)
Definition MessageCount := Quantity.t ResourceKind.MessageCount.
(* resources/src/lib.rs:167-171 PacketCount *)
Definition PacketCount := Quantity.t ResourceKind.PacketCount.
(* resources/src/lib.rs:215-219 StorageOps *)
Definition StorageOps := Quantity.t ResourceKind.StorageOps.
(* resources/src/lib.rs:257-261 PipelineStages *)
Definition PipelineStages := Quantity.t ResourceKind.PipelineStages.

(** ** Budgets *)
Module ResourceBudget.
(* resources/src/lib.rs:299-311 ResourceBudget *)
Record t := mk {
  cpu_ticks : option CpuTicks;
  memory_units : option MemoryUnits;
  message_count : option MessageCount;
  packet_count : option PacketCount;
  storage_ops : option StorageOps;
  pipeline_stages : option PipelineStages
}.
#[global] Instance rebuild_t : Rebuild t := λ b,
  mk (cpu_ticks b) (memory_units b) (message_count b) (packet_count b)
     (storage_ops b) (pipeline_stages b).

(* resources/src/lib.rs:314-324 ResourceBudget::unlimited *)
Definition unlimited : t := mk None None None None None None.
(* resources/src/lib.rs:326-336 ResourceBudget::zero *)
Definition zero : t :=
  mk (Some Quantity.zero) (Some Quantity.zero) (Some Quantity.zero) (Some Quantity.zero)
     (Some Quantity.zero) (Some Quantity.zero).
(* resources/src/lib.rs:338-342 ResourceBudget::with_cpu_ticks *)
Definition with_cpu_ticks (limit : CpuTicks) (b : t) : t := b <| cpu_ticks := Some limit |>.
(* resources/src/lib.rs:344-348 ResourceBudget::with_memory_units *)
Definition with_memory_units (limit : MemoryUnits) (b : t) : t :=
  b <| memory_units := Some limit |>.
(* resources/src/lib.rs:350-354 ResourceBudget::with_message_count *)
Definition with_message_count (limit : MessageCount) (b : t) : t :=
  b <| message_count := Some limit |>.
(* resources/src/lib.rs:356-360 ResourceBudget::with_packet_count *)
Definition with_packet_count (limit : PacketCount) (b : t) : t :=
  b <| packet_count := Some limit |>.
(* resources/src/lib.rs:362-366 ResourceBudget::with_storage_ops *)
Definition with_storage_ops (limit : StorageOps) (b : t) : t :=
  b <| storage_ops := Some limit |>.
(* resources/src/lib.rs:368-372 ResourceBudget::with_pipeline_stages *)
Definition with_pipeline_stages (limit : PipelineStages) (b : t) : t :=
  b <| pipeline_stages := Some limit |>.

(** One resource of [is_subset_of]: a missing limit on either side passes. *)
(* resources/src/lib.rs:379-386 ResourceBudget::is_subset_of *)
Definition limit_subset {k} (self other : option (Quantity.t k)) : bool :=
  match self with
  | Some a => match other with
              | Some b => Quantity.leb a b
              | None => true
              end
  | None => true
  end.
(* resources/src/lib.rs:374-429 ResourceBudget::is_subset_of *)
Definition is_subset_of (self other : t) : bool :=
  if negb (limit_subset (cpu_ticks self) (cpu_ticks other)) then false
  else if negb (limit_subset (memory_units self) (memory_units other)) then false
  else if negb (limit_subset (message_count self) (message_count other)) then false
  else if negb (limit_subset (packet_count self) (packet_count other)) then false
  else if negb (limit_subset (storage_ops self) (storage_ops other)) then false
  else if negb (limit_subset (pipeline_stages self) (pipeline_stages other)) then false
  else true.

(** One resource of [min]. *)
(* resources/src/lib.rs:434-439 ResourceBudget::min *)
Definition limit_min {k} (self other : option (Quantity.t k)) : option (Quantity.t k) :=
  match self, other with
  | Some a, Some b => Some (Quantity.min a b)
  | Some a, None => Some a
  | None, Some b => Some b
  | None, None => None
  end.
(* resources/src/lib.rs:431-471 ResourceBudget::min *)
Definition min (self other : t) : t :=
  mk (limit_min (cpu_ticks self) (cpu_ticks other))
     (limit_min (memory_units self) (memory_units other))
     (limit_min (message_count self) (message_count other))
     (limit_min (packet_count self) (packet_count other))
     (limit_min (storage_ops self) (storage_ops other))
     (limit_min (pipeline_stages self) (pipeline_stages other)).
End ResourceBudget.

(** ** Usage *)
Module ResourceExceeded.
(* resources/src/lib.rs:674-703 ResourceExceeded *)
Inductive t :=
| CpuTicks (limit usage : CpuTicks)
| MemoryUnits (limit usage : MemoryUnits)
| MessageCount (limit usage : MessageCount)
| PacketCount (limit usage : PacketCount)
| StorageOps (limit usage : StorageOps)
| PipelineStages (limit usage : PipelineStages).
(** The two numbers a report carries. *)
Definition numbers (x : t) : N * N :=
  match x with
  | CpuTicks l u => (Quantity.val l, Quantity.val u)
  | MemoryUnits l u => (Quantity.val l, Quantity.val u)
  | MessageCount l u => (Quantity.val l, Quantity.val u)
  | PacketCount l u => (Quantity.val l, Quantity.val u)
  | StorageOps l u => (Quantity.val l, Quantity.val u)
  | PipelineStages l u => (Quantity.val l, Quantity.val u)
  end.
End ResourceExceeded.

Module ResourceUsage.
(* resources/src/lib.rs:511-522 ResourceUsage *)
Record t := mk {
  cpu_ticks : CpuTicks;
  memory_units : MemoryUnits;
  message_count : MessageCount;
  packet_count : PacketCount;
  storage_ops : StorageOps;
  pipeline_stages : PipelineStages
}.
#[global] Instance rebuild_t : Rebuild t := λ u,
  mk (cpu_ticks u) (memory_units u) (message_count u) (packet_count u)
     (storage_ops u) (pipeline_stages u).
(* resources/src/lib.rs:525-535 ResourceUsage::zero *)
Definition zero : t :=
  mk Quantity.zero Quantity.zero Quantity.zero Quantity.zero Quantity.zero Quantity.zero.
(* resources/src/lib.rs:537-540 ResourceUsage::consume_cpu_ticks *)
Definition consume_cpu_ticks (amount : CpuTicks) (u : t) : t :=
  u <| cpu_ticks ::= λ c, Quantity.saturating_add c amount |>.
(* resources/src/lib.rs:542-545 ResourceUsage::consume_memory_units *)
Definition consume_memory_units (amount : MemoryUnits) (u : t) : t :=
  u <| memory_units ::= λ c, Quantity.saturating_add c amount |>.
(* resources/src/lib.rs:547-550 ResourceUsage::consume_message *)
Definition consume_message (u : t) : t :=
  u <| message_count ::= λ c, Quantity.saturating_add c (Quantity.new 1) |>.
(* resources/src/lib.rs:552-555 ResourceUsage::consume_packet *)
Definition consume_packet (u : t) : t :=
  u <| packet_count ::= λ c, Quantity.saturating_add c (Quantity.new 1) |>.
(* resources/src/lib.rs:557-560 ResourceUsage::consume_storage_op *)
Definition consume_storage_op (u : t) : t :=
  u <| storage_ops ::= λ c, Quantity.saturating_add c (Quantity.new 1) |>.
(* resources/src/lib.rs:562-565 ResourceUsage::consume_pipeline_stage *)
Definition consume_pipeline_stage (u : t) : t :=
  u <| pipeline_stages ::= λ c, Quantity.saturating_add c (Quantity.new 1) |>.

(** One resource of [exceeds]: the limit, when it is set and exceeded. *)
(* resources/src/lib.rs:571-578 ResourceUsage::exceeds *)
Definition limit_exceeded {k} (usage : Quantity.t k) (limit : option (Quantity.t k))
    : option (Quantity.t k) :=
  match limit with
  | Some l => if Quantity.leb usage l then None else Some l
  | None => None
  end.
(* resources/src/lib.rs:567-626 ResourceUsage::exceeds *)
Definition exceeds (u : t) (b : ResourceBudget.t) : option ResourceExceeded.t :=
  match limit_exceeded (cpu_ticks u) (ResourceBudget.cpu_ticks b) with
  | Some l => Some (ResourceExceeded.CpuTicks l (cpu_ticks u))
  | None =>
  match limit_exceeded (memory_units u) (ResourceBudget.memory_units b) with
  | Some l => Some (ResourceExceeded.MemoryUnits l (memory_units u))
  | None =>
  match limit_exceeded (message_count u) (ResourceBudget.message_count b) with
  | Some l => Some (ResourceExceeded.MessageCount l (message_count u))
  | None =>
  match limit_exceeded (packet_count u) (ResourceBudget.packet_count b) with
  | Some l => Some (ResourceExceeded.PacketCount l (packet_count u))
  | None =>
  match limit_exceeded (storage_ops u) (ResourceBudget.storage_ops b) with
  | Some l => Some (ResourceExceeded.StorageOps l (storage_ops u))
  | None =>
  match limit_exceeded (pipeline_stages u) (ResourceBudget.pipeline_stages b) with
  | Some l => Some (ResourceExceeded.PipelineStages l (pipeline_stages u))
  | None => None
  end end end end end end.

(* resources/src/lib.rs:628-650 ResourceUsage::remaining *)
Definition remaining (u : t) (b : ResourceBudget.t) : ResourceBudget.t :=
  ResourceBudget.mk
    ((λ limit, Quantity.saturating_sub limit (cpu_ticks u)) <$> ResourceBudget.cpu_ticks b)
    ((λ limit, Quantity.saturating_sub limit (memory_units u)) <$> ResourceBudget.memory_units b)
    ((λ limit, Quantity.saturating_sub limit (message_count u)) <$> ResourceBudget.message_count b)
    ((λ limit, Quantity.saturating_sub limit (packet_count u)) <$> ResourceBudget.packet_count b)
    ((λ limit, Quantity.saturating_sub limit (storage_ops u)) <$> ResourceBudget.storage_ops b)
    ((λ limit, Quantity.saturating_sub limit (pipeline_stages u))
       <$> ResourceBudget.pipeline_stages b).
End ResourceUsage.

Module ResourceDelta.
(* resources/src/lib.rs:754-765 ResourceDelta *)
Record t := mk {
  cpu_ticks : CpuTicks;
  memory_units : MemoryUnits;
  message_count : MessageCount;
  packet_count : PacketCount;
  storage_ops : StorageOps;
  pipeline_stages : PipelineStages
}.
(* resources/src/lib.rs:780-790 ResourceDelta::from *)
Definition from (before after : ResourceUsage.t) : t :=
  mk (Quantity.saturating_sub (ResourceUsage.cpu_ticks after) (ResourceUsage.cpu_ticks before))
     (Quantity.saturating_sub (ResourceUsage.memory_units after)
        (ResourceUsage.memory_units before))
     (Quantity.saturating_sub (ResourceUsage.message_count after)
        (ResourceUsage.message_count before))
     (Quantity.saturating_sub (ResourceUsage.packet_count after)
        (ResourceUsage.packet_count before))
     (Quantity.saturating_sub (ResourceUsage.storage_ops after)
        (ResourceUsage.storage_ops before))
     (Quantity.saturating_sub (ResourceUsage.pipeline_stages after)
        (ResourceUsage.pipeline_stages before)).
End ResourceDelta.

(** ** What the comparisons decide *)
Module ResourceSpec.

(** A quantity respects an optional limit. *)
Definition fits {k} (q : Quantity.t k) (limit : option (Quantity.t k)) : Prop :=
  match limit with Some l => Quantity.val q ≤ Quantity.val l | None => True end.

(** The usage respects every limit of the budget. *)
Definition within (u : ResourceUsage.t) (b : ResourceBudget.t) : Prop :=
  fits (ResourceUsage.cpu_ticks u) (ResourceBudget.cpu_ticks b) ∧
  fits (ResourceUsage.memory_units u) (ResourceBudget.memory_units b) ∧
  fits (ResourceUsage.message_count u) (ResourceBudget.message_count b) ∧
  fits (ResourceUsage.packet_count u) (ResourceBudget.packet_count b) ∧
  fits (ResourceUsage.storage_ops u) (ResourceBudget.storage_ops b) ∧
  fits (ResourceUsage.pipeline_stages u) (ResourceBudget.pipeline_stages b).

(** The componentwise sum of two usages. *)
Definition usage_plus (u d : ResourceUsage.t) : ResourceUsage.t :=
  let plus {k} (a b : Quantity.t k) := Quantity.new (Quantity.val a + Quantity.val b) in
  ResourceUsage.mk
    (plus (ResourceUsage.cpu_ticks u) (ResourceUsage.cpu_ticks d))
    (plus (ResourceUsage.memory_units u) (ResourceUsage.memory_units d))
    (plus (ResourceUsage.message_count u) (ResourceUsage.message_count d))
    (plus (ResourceUsage.packet_count u) (ResourceUsage.packet_count d))
    (plus (ResourceUsage.storage_ops u) (ResourceUsage.storage_ops d))
    (plus (ResourceUsage.pipeline_stages u) (ResourceUsage.pipeline_stages d)).

(** [a] sets a limit on every resource on which [b] sets one. *)
Definition limits_at_least (a b : ResourceBudget.t) : Prop :=
  (is_Some (ResourceBudget.cpu_ticks b) → is_Some (ResourceBudget.cpu_ticks a)) ∧
  (is_Some (ResourceBudget.memory_units b) → is_Some (ResourceBudget.memory_units a)) ∧
  (is_Some (ResourceBudget.message_count b) → is_Some (ResourceBudget.message_count a)) ∧
  (is_Some (ResourceBudget.packet_count b) → is_Some (ResourceBudget.packet_count a)) ∧
  (is_Some (ResourceBudget.storage_ops b) → is_Some (ResourceBudget.storage_ops a)) ∧
  (is_Some (ResourceBudget.pipeline_stages b) → is_Some (ResourceBudget.pipeline_stages a)).

Section per_resource.
Context {k : ResourceKind.t}.
Implicit Types q d : Quantity.t k.
Implicit Types l a b : option (Quantity.t k).

Lemma limit_exceeded_none q l : ResourceUsage.limit_exceeded q l = None ↔ fits q l.
Proof.
  destruct l as [l|]; simpl; [|done]. unfold Quantity.leb.
  destruct (N.leb_spec (Quantity.val q) (Quantity.val l)); naive_solver lia.
Qed.

Lemma limit_exceeded_some q l x :
  ResourceUsage.limit_exceeded q l = Some x → l = Some x ∧ Quantity.val x < Quantity.val q.
Proof.
  destruct l as [l|]; simpl; [|done]. unfold Quantity.leb.
  destruct (N.leb_spec (Quantity.val q) (Quantity.val l)); naive_solver.
Qed.

Lemma fits_min q a b : fits q (ResourceBudget.limit_min a b) ↔ fits q a ∧ fits q b.
Proof.
  destruct a as [a|], b as [b|]; simpl; try tauto. unfold Quantity.min, Quantity.leb.
  destruct (N.leb_spec (Quantity.val a) (Quantity.val b)); lia.
Qed.

Lemma fits_remaining q d l :
  fits q l →
  fits (Quantity.new (Quantity.val q + Quantity.val d) : Quantity.t k) l
  ↔ fits d ((λ limit, Quantity.saturating_sub limit q) <$> l).
Proof. destruct l as [l|]; simpl; [unfold saturating_sub; lia|done]. Qed.

(** A tighter limit admits less, and conversely. *)
Lemma limit_subset_spec a b :
  (is_Some b → is_Some a) →
  ResourceBudget.limit_subset a b = true ↔ (∀ q, fits q a → fits q b).
Proof.
  intros Hab. destruct a as [a|], b as [b|]; simpl.
  - unfold Quantity.leb. rewrite N.leb_le. split; [lia|].
    intros H. apply (H a). lia.
  - done.
  - by destruct Hab; [eauto|].
  - done.
Qed.

Lemma limit_subset_refl a : ResourceBudget.limit_subset a a = true.
Proof. destruct a; simpl; [|done]. unfold Quantity.leb. by rewrite N.leb_le. Qed.
End per_resource.

Lemma is_subset_of_alt a b :
  ResourceBudget.is_subset_of a b = true ↔
  ResourceBudget.limit_subset (ResourceBudget.cpu_ticks a) (ResourceBudget.cpu_ticks b) = true ∧
  ResourceBudget.limit_subset (ResourceBudget.memory_units a)
    (ResourceBudget.memory_units b) = true ∧
  ResourceBudget.limit_subset (ResourceBudget.message_count a)
    (ResourceBudget.message_count b) = true ∧
  ResourceBudget.limit_subset (ResourceBudget.packet_count a)
    (ResourceBudget.packet_count b) = true ∧
  ResourceBudget.limit_subset (ResourceBudget.storage_ops a)
    (ResourceBudget.storage_ops b) = true ∧
  ResourceBudget.limit_subset (ResourceBudget.pipeline_stages a)
    (ResourceBudget.pipeline_stages b) = true.
Proof.
  unfold ResourceBudget.is_subset_of.
  repeat (destruct (ResourceBudget.limit_subset _ _); simpl; [|naive_solver]).
  naive_solver.
Qed.

Lemma within_zero b : within ResourceUsage.zero b.
Proof.
  assert (∀ k (l : option (Quantity.t k)), fits Quantity.zero l) as Hz.
  { intros k [l|]; simpl; [lia|done]. }
  unfold within; simpl. by repeat split.
Qed.

Lemma exceeds_none u b : ResourceUsage.exceeds u b = None ↔ within u b.
Proof.
  unfold within. rewrite <- !limit_exceeded_none. unfold ResourceUsage.exceeds.
  repeat (destruct (ResourceUsage.limit_exceeded _ _); [naive_solver|]).
  naive_solver.
Qed.

(** [exceeds] decides whether a usage respects a budget: it finds nothing exactly
    when every limit is respected, and what it reports is a violated limit, with the
    usage strictly above it. *)
Theorem exceeds_decides_within u b :
  match ResourceUsage.exceeds u b with
  | None => within u b
  | Some x => ¬ within u b ∧ (ResourceExceeded.numbers x).1 < (ResourceExceeded.numbers x).2
  end.
Proof.
  destruct (ResourceUsage.exceeds u b) as [x|] eqn:E; [|by apply exceeds_none].
  split; [by rewrite <- exceeds_none, E|]. revert E. unfold ResourceUsage.exceeds.
  repeat case_match; intros; simplify_eq/=;
    match goal with H : ResourceUsage.limit_exceeded _ _ = Some _ |- _ =>
      apply limit_exceeded_some in H end; tauto.
Qed.

(** [min] is the meet of budgets: a usage respects [min a b] exactly when it
    respects both [a] and [b]. *)
Theorem within_min_iff u a b :
  within u (ResourceBudget.min a b) ↔ within u a ∧ within u b.
Proof. unfold within; simpl. rewrite !fits_min. tauto. Qed.

(** [remaining] is exact: for a usage within its budget, a further
    consumption [d] keeps the total within the budget exactly when [d] alone is
    within what [remaining] reports. *)
Theorem remaining_is_exact u d b :
  within u b →
  within (usage_plus u d) b ↔ within d (ResourceUsage.remaining u b).
Proof.
  unfold within; simpl. intros (?&?&?&?&?&?). rewrite !fits_remaining by done. done.
Qed.

Definition sample_budget : ResourceBudget.t :=
  ResourceBudget.mk (Some (Quantity.new 10)) None (Some (Quantity.new 3)) None None None.

Lemma remaining_is_exact_witness :
  let u := ResourceUsage.zero <| ResourceUsage.cpu_ticks := Quantity.new 4 |> in
  within (usage_plus u u) sample_budget ↔ within u (ResourceUsage.remaining u sample_budget).
Proof.
  intros u. apply (remaining_is_exact u u sample_budget).
  unfold within. simpl. split_and!; done || lia.
Defined.

(** When the first budget limits every resource the second limits,
    [is_subset_of] decides exactly whether every usage the first admits is
    admitted by the second. *)
Theorem is_subset_of_iff_admits a b :
  limits_at_least a b →
  ResourceBudget.is_subset_of a b = true ↔ (∀ u, within u a → within u b).
Proof.
  intros (H1&H2&H3&H4&H5&H6). rewrite is_subset_of_alt, !limit_subset_spec by done.
  split; [unfold within; naive_solver|]. intros Hall.
  destruct (within_zero a) as (Z1&Z2&Z3&Z4&Z5&Z6).
  repeat split; intros q Hq;
    [ generalize (Hall (ResourceUsage.zero <| ResourceUsage.cpu_ticks := q |>))
    | generalize (Hall (ResourceUsage.zero <| ResourceUsage.memory_units := q |>))
    | generalize (Hall (ResourceUsage.zero <| ResourceUsage.message_count := q |>))
    | generalize (Hall (ResourceUsage.zero <| ResourceUsage.packet_count := q |>))
    | generalize (Hall (ResourceUsage.zero <| ResourceUsage.storage_ops := q |>))
    | generalize (Hall (ResourceUsage.zero <| ResourceUsage.pipeline_stages := q |>)) ];
    unfold within; simpl; tauto.
Qed.

Lemma is_subset_of_iff_admits_witness :
  let a := sample_budget <| ResourceBudget.packet_count := Some (Quantity.new 1) |> in
  ResourceBudget.is_subset_of a sample_budget = true ↔
  (∀ u, within u a → within u sample_budget).
Proof.
  intros a. apply (is_subset_of_iff_admits a sample_budget).
  unfold limits_at_least. simpl. split_and!; by eauto.
Defined.

(** An unlimited budget counts as a subset of every budget, although it
    admits usages that any limit rules out: the check bounds a child by its
    parent only on the resources the child limits itself. *)
Theorem unlimited_is_subset_of_all b :
  ResourceBudget.is_subset_of ResourceBudget.unlimited b = true ∧
  ∀ u, within u ResourceBudget.unlimited.
Proof. split; [done|]. intros u. unfold within, fits; simpl. tauto. Qed.

End ResourceSpec.
