(* ===== verification/Identity.v ===== *)
(** * Execution identities ([identity/src/lib.rs])

    The metadata record kept for every execution identity, its builders, and the
    exit notifications sent when a task ends. *)

From S2P Require Import Prelude CoreTypes Resources.
Open Scope string_scope.
Open Scope list_scope.
Open Scope N_scope.

Module IdentityKind.
(* identity/src/lib.rs:69-83 IdentityKind *)
Inductive t := System | Service | Component | PipelineStage.
#[global] Instance eq_dec : EqDecision t.
Proof. solve_decision. Defined.
End IdentityKind.

Module TrustDomain.
(* identity/src/lib.rs:96-105 TrustDomain *)
Record t := new { name : string }.
#[global] Instance eq_dec : EqDecision t.
Proof. solve_decision. Defined.
(* identity/src/lib.rs:113-116 TrustDomain::core *)
Definition core : t := new "core".
(* identity/src/lib.rs:118-121 TrustDomain::user *)
Definition user : t := new "user".
(* identity/src/lib.rs:123-126 TrustDomain::sandbox *)
Definition sandbox : t := new "sandbox".
End TrustDomain.

Module IdentityMetadata.
(* identity/src/lib.rs:140-173 IdentityMetadata *)
Record t := mk {
  execution_id : ExecutionId.t;
  kind : IdentityKind.t;
  task_id : option TaskId.t;
  parent_id : option ExecutionId.t;
  creator_id : option ExecutionId.t;
  created_at_nanos : N;
  trust_domain : TrustDomain.t;
  name : string;
  budget : option ResourceBudget.t;
  usage : ResourceUsage.t
}.
#[global] Instance rebuild_t : Rebuild t := λ m,
  mk (execution_id m) (kind m) (task_id m) (parent_id m) (creator_id m)
     (created_at_nanos m) (trust_domain m) (name m) (budget m) (usage m).

(** [IdentityMetadata::new] draws the execution identifier. *)
(* identity/src/lib.rs:176-195 IdentityMetadata::new *)
Definition new (execution_id : ExecutionId.t) (kind : IdentityKind.t)
    (trust_domain : TrustDomain.t) (name : string) (created_at_nanos : N) : t :=
  mk execution_id kind None None None created_at_nanos trust_domain name None
     ResourceUsage.zero.
(* identity/src/lib.rs:197-201 IdentityMetadata::with_task_id *)
Definition with_task_id (id : TaskId.t) (m : t) : t := m <| task_id := Some id |>.
(* identity/src/lib.rs:203-207 IdentityMetadata::with_parent *)
Definition with_parent (id : ExecutionId.t) (m : t) : t := m <| parent_id := Some id |>.
(* identity/src/lib.rs:209-213 IdentityMetadata::with_creator *)
Definition with_creator (id : ExecutionId.t) (m : t) : t := m <| creator_id := Some id |>.
(* identity/src/lib.rs:215-218 IdentityMetadata::same_domain *)
Definition same_domain (self other : t) : bool :=
  bool_decide (trust_domain self = trust_domain other).
(* identity/src/lib.rs:220-223 IdentityMetadata::is_child_of *)
Definition is_child_of (id : ExecutionId.t) (m : t) : bool :=
  bool_decide (parent_id m = Some id).
(* identity/src/lib.rs:225-234 IdentityMetadata::with_budget *)
Definition with_budget (b : ResourceBudget.t) (m : t) : t := m <| budget := Some b |>.
(* identity/src/lib.rs:236-239 IdentityMetadata::has_budget *)
Definition has_budget (m : t) : bool := bool_decide (is_Some (budget m)).
(* identity/src/lib.rs:241-250 IdentityMetadata::budget_inherits_from *)
Definition budget_inherits_from (self parent : t) : bool :=
  match budget self, budget parent with
  | Some child_budget, Some parent_budget =>
      ResourceBudget.is_subset_of child_budget parent_budget
  | _, _ => true
  end.
End IdentityMetadata.

Module ExitReason.
(* identity/src/lib.rs:253-267 ExitReason *)
Inductive t :=
| Normal
| Failure (error : string)
| Cancelled (reason : string)
| Timeout.
End ExitReason.

Module ExitNotification.
(* identity/src/lib.rs:280-293 ExitNotification *)
Record t := mk {
  execution_id : ExecutionId.t;
  task_id : option TaskId.t;
  reason : ExitReason.t;
  terminated_at_nanos : N
}.
End ExitNotification.
