(* ===== verification/Ipc.v ===== *)
(** * Message envelopes and schema versions ([ipc/src/message.rs]) *)

From S2P Require Import Prelude CoreTypes.
Open Scope string_scope.
Open Scope list_scope.
Open Scope N_scope.

Module SchemaVersion.
(* ipc/src/message.rs:45-60 SchemaVersion *)
Record t := new { major : N; minor : N }.
#[global] Instance eq_dec : EqDecision t.
Proof. solve_decision. Defined.
(* ipc/src/message.rs:62-70 SchemaVersion::is_compatible_with *)
Definition is_compatible_with (self other : t) : bool := major self =? major other.
(* ipc/src/message.rs:72-76 SchemaVersion::is_older_than *)
Definition is_older_than (self other : t) : bool :=
  (major self <? major other) || ((major self =? major other) && (minor self <? minor other)).
(* ipc/src/message.rs:78-82 SchemaVersion::is_newer_than *)
Definition is_newer_than (self other : t) : bool :=
  (major other <? major self) || ((major self =? major other) && (minor other <? minor self)).
(* ipc/src/message.rs:85-89 Display for SchemaVersion *)
Definition display (v : t) : string :=
  "v" +:+ pretty (major v) +:+ "." +:+ pretty (minor v).
End SchemaVersion.

Module Compatibility.
(* ipc/src/message.rs:91-100 Compatibility *)
Inductive t := Compatible | UpgradeRequired | Unsupported.
End Compatibility.

Module VersionPolicy.
(* ipc/src/message.rs:102-111 VersionPolicy *)
Record t := mk { current_version : SchemaVersion.t; min_major : N }.
#[global] Instance rebuild_t : Rebuild t := λ p, mk (current_version p) (min_major p).
(* ipc/src/message.rs:114-120 VersionPolicy::current *)
Definition current (major minor : N) : t := mk (SchemaVersion.new major minor) major.
(* ipc/src/message.rs:122-129 VersionPolicy::with_min_major *)
Definition with_min_major (m : N) (p : t) : t := p <| min_major := m |>.
(* ipc/src/message.rs:131-145 VersionPolicy::check_compatibility *)
Definition check_compatibility (p : t) (incoming : SchemaVersion.t) : Compatibility.t :=
  if SchemaVersion.major (current_version p) <? SchemaVersion.major incoming
  then Compatibility.Unsupported
  else if SchemaVersion.major incoming <? min_major p
  then Compatibility.UpgradeRequired
  else Compatibility.Compatible.
(* ipc/src/message.rs:152-155 VersionPolicy::min_version *)
Definition min_version (p : t) : SchemaVersion.t := SchemaVersion.new (min_major p) 0.
End VersionPolicy.

Module SchemaMismatchError.
(* ipc/src/message.rs:158-173 SchemaMismatchError *)
Inductive t :=
| UpgradeRequired (service : ServiceId.t) (expected_min received : SchemaVersion.t)
| Unsupported (service : ServiceId.t) (supported_range : SchemaVersion.t * SchemaVersion.t)
    (received : SchemaVersion.t).
(* ipc/src/message.rs:175-198 Display for SchemaMismatchError *)
Definition display `{UuidFormat} (e : t) : string :=
  match e with
  | UpgradeRequired service expected_min received =>
      "Schema version too old for service " +:+ ServiceId.display service +:+ ": received "
      +:+ SchemaVersion.display received +:+ ", expected at least "
      +:+ SchemaVersion.display expected_min +:+ ". Please upgrade sender."
  | Unsupported service supported_range received =>
      "Schema version not supported by service " +:+ ServiceId.display service
      +:+ ": received " +:+ SchemaVersion.display received +:+ ", supported range "
      +:+ SchemaVersion.display supported_range.1 +:+ "-"
      +:+ SchemaVersion.display supported_range.2
  end.
End SchemaMismatchError.

(** The payload is the JSON text of the sender's value; the kernel never looks
    inside it. *)
(** [serde_json] on a serialisable type: the encoder and the decoder, with the [Display]
    texts of their errors.  The crate is not part of the sources. *)
Class JsonCodec (T : Type) := {
  to_vec : T → result (list N) string;
  from_slice : list N → result T string
}.

Module MessagePayload.
(* ipc/src/message.rs:290-298 MessagePayload *)
Record t := mk { data : list N }.
(* ipc/src/message.rs:300-305 MessagePayload::new *)
Definition new `{JsonCodec T} (value : T) : result t string := map_ok mk (to_vec value).
(* ipc/src/message.rs:307-310 MessagePayload::deserialize *)
Definition deserialize `{JsonCodec T} (p : t) : result T string := from_slice (data p).
(* ipc/src/message.rs:312-315 MessagePayload::as_bytes *)
Definition as_bytes (p : t) : list N := data p.
End MessagePayload.

Module MessageEnvelope.
(* ipc/src/message.rs:230-250 MessageEnvelope *)
Record t := mk {
  id : MessageId.t;
  destination : ServiceId.t;
  source : option TaskId.t;
  action : string;
  schema_version : SchemaVersion.t;
  correlation_id : option MessageId.t;
  payload : MessagePayload.t
}.
#[global] Instance rebuild_t : Rebuild t := λ m,
  mk (id m) (destination m) (source m) (action m) (schema_version m) (correlation_id m)
     (payload m).
(** [MessageEnvelope::new] draws the message identifier. *)
(* ipc/src/message.rs:253-269 MessageEnvelope::new *)
Definition new (id : MessageId.t) (destination : ServiceId.t) (action : string)
    (schema_version : SchemaVersion.t) (payload : MessagePayload.t) : t :=
  mk id destination None action schema_version None payload.
(* ipc/src/message.rs:271-275 MessageEnvelope::with_source *)
Definition with_source (src : TaskId.t) (m : t) : t := m <| source := Some src |>.
(* ipc/src/message.rs:277-281 MessageEnvelope::with_correlation *)
Definition with_correlation (c : MessageId.t) (m : t) : t := m <| correlation_id := Some c |>.
(* ipc/src/message.rs:283-287 MessageEnvelope::is_response *)
Definition is_response (m : t) : bool := bool_decide (is_Some (correlation_id m)).
End MessageEnvelope.

(** A message together with its typed payload. *)
Module Message.
(* ipc/src/message.rs:318-327 Message *)
Record t (T : Type) := mk { envelope : MessageEnvelope.t; payload : T }.
Arguments mk {T}.
Arguments envelope {T}.
Arguments payload {T}.
(* ipc/src/message.rs:330-341 Message::new *)
Definition new `{JsonCodec T} (id : MessageId.t) (destination : ServiceId.t) (action : string)
    (schema_version : SchemaVersion.t) (value : T) : result (t T) string :=
  map_ok (λ bytes, mk (MessageEnvelope.new id destination action schema_version bytes) value)
    (MessagePayload.new value).
(* ipc/src/message.rs:343-346 Message::into_envelope *)
Definition into_envelope {T} (m : t T) : MessageEnvelope.t := envelope m.
End Message.

(** One end of a channel. *)
Module ChannelEnd.
(* ipc/src/channel.rs:45-51 ChannelEnd *)
Inductive t := Sender (id : ChannelId.t) | Receiver (id : ChannelId.t).
(* ipc/src/channel.rs:55-59 ChannelEnd::channel_id *)
Definition channel_id (e : t) : ChannelId.t := match e with Sender id | Receiver id => id end.
(* ipc/src/channel.rs:62-64 ChannelEnd::is_sender *)
Definition is_sender (e : t) : bool := match e with Sender _ => true | Receiver _ => false end.
(* ipc/src/channel.rs:67-69 ChannelEnd::is_receiver *)
Definition is_receiver (e : t) : bool := match e with Receiver _ => true | Sender _ => false end.
(* ipc/src/channel.rs:72-79 Display for ChannelEnd *)
Definition display `{UuidFormat} (e : t) : string :=
  match e with
  | Sender id => "Sender(" +:+ ChannelId.display id +:+ ")"
  | Receiver id => "Receiver(" +:+ ChannelId.display id +:+ ")"
  end.
End ChannelEnd.

(** ** Console commands ([ipc/src/typed.rs]) *)

Module CommandErrorCode.
(* ipc/src/typed.rs:113-121 CommandErrorCode *)
Inductive t := InvalidCommand | InvalidArguments | ServiceUnavailable | Unauthorized | Internal.
End CommandErrorCode.

Module CommandError.
(* ipc/src/typed.rs:123-129 CommandError *)
Record t := mk { code : CommandErrorCode.t; message : string; details : option string }.
#[global] Instance rebuild_t : Rebuild t := λ e, mk (code e) (message e) (details e).
(* ipc/src/typed.rs:132-138 CommandError::new *)
Definition new (code : CommandErrorCode.t) (message : string) : t := mk code message None.
(* ipc/src/typed.rs:140-143 CommandError::with_details *)
Definition with_details (d : string) (e : t) : t := e <| details := Some d |>.
End CommandError.

(* ipc/src/typed.rs:11-12 COMMAND_SCHEMA_VERSION *)
Definition COMMAND_SCHEMA_VERSION : SchemaVersion.t := SchemaVersion.new 1 0.
(* ipc/src/typed.rs:14-15 COMMAND_REQUEST_ACTION *)
Definition COMMAND_REQUEST_ACTION : string := "console.command.request".
(* ipc/src/typed.rs:17-18 COMMAND_RESPONSE_ACTION *)
Definition COMMAND_RESPONSE_ACTION : string := "console.command.response".

Module CommandRequest.
(* ipc/src/typed.rs:20-27 CommandRequest *)
Record t := mk { version : SchemaVersion.t; command : string }.
(* ipc/src/typed.rs:31-36 CommandRequest::new *)
Definition new (command : string) : t := mk COMMAND_SCHEMA_VERSION command.
(* ipc/src/typed.rs:39-50 CommandRequest::into_envelope *)
Definition into_envelope `{JsonCodec t} (id : MessageId.t) (destination : ServiceId.t) (r : t)
    : result MessageEnvelope.t string :=
  map_ok (MessageEnvelope.new id destination COMMAND_REQUEST_ACTION (version r))
    (MessagePayload.new r).
End CommandRequest.

Module CommandStatus.
(* ipc/src/typed.rs:53-58 CommandStatus *)
Inductive t := Ok | Error (e : CommandError.t).
End CommandStatus.

Module CommandResponse.
(* ipc/src/typed.rs:60-69 CommandResponse *)
Record t := mk {
  version : SchemaVersion.t;
  status : CommandStatus.t;
  output : option string
}.
(* ipc/src/typed.rs:73-79 CommandResponse::ok *)
Definition ok (output : string) : t := mk COMMAND_SCHEMA_VERSION CommandStatus.Ok (Some output).
(* ipc/src/typed.rs:82-88 CommandResponse::ok_empty *)
Definition ok_empty : t := mk COMMAND_SCHEMA_VERSION CommandStatus.Ok None.
(* ipc/src/typed.rs:91-97 CommandResponse::error *)
Definition error (e : CommandError.t) : t := mk COMMAND_SCHEMA_VERSION (CommandStatus.Error e) None.
(* ipc/src/typed.rs:100-110 CommandResponse::into_envelope *)
Definition into_envelope `{JsonCodec t} (id : MessageId.t) (destination : ServiceId.t)
    (correlation : MessageId.t) (r : t) : result MessageEnvelope.t string :=
  map_ok (λ payload, MessageEnvelope.with_correlation correlation
      (MessageEnvelope.new id destination COMMAND_RESPONSE_ACTION (version r) payload))
    (MessagePayload.new r).
End CommandResponse.

(** ** Properties *)
Module SchemaSpec.

(** Versions are totally ordered: of any two, exactly one of older, equal and
    newer holds, and "newer" is "older" with the arguments exchanged. *)
Theorem schema_version_trichotomy (v w : SchemaVersion.t) :
  (SchemaVersion.is_older_than v w = true ∧ v ≠ w ∧ SchemaVersion.is_newer_than v w = false) ∨
  (SchemaVersion.is_older_than v w = false ∧ v = w ∧ SchemaVersion.is_newer_than v w = false) ∨
  (SchemaVersion.is_older_than v w = false ∧ v ≠ w ∧ SchemaVersion.is_newer_than v w = true).
Proof.
  destruct v as [a b], w as [c d].
  unfold SchemaVersion.is_older_than, SchemaVersion.is_newer_than; simpl.
  destruct (N.ltb_spec a c), (N.ltb_spec c a), (N.eqb_spec a c), (N.ltb_spec b d),
    (N.ltb_spec d b); simpl; try lia;
  first [ left; split_and!; [done|congruence || (intros [=]; lia)|done]
        | right; left; split_and!; [done|f_equal; lia|done]
        | right; right; split_and!; [done|congruence || (intros [=]; lia)|done] ].
Qed.

(** The schema check accepts exactly the major versions from the policy's
    minimum to its current one; below the minimum the sender is told to upgrade,
    above the current version the message is unsupported. *)
Theorem check_compatibility_spec p v :
  VersionPolicy.min_major p ≤ SchemaVersion.major (VersionPolicy.current_version p) →
  match VersionPolicy.check_compatibility p v with
  | Compatibility.Compatible =>
      VersionPolicy.min_major p ≤ SchemaVersion.major v
        ≤ SchemaVersion.major (VersionPolicy.current_version p)
  | Compatibility.UpgradeRequired =>
      SchemaVersion.is_older_than v (VersionPolicy.min_version p) = true
  | Compatibility.Unsupported =>
      SchemaVersion.is_newer_than v (VersionPolicy.current_version p) = true
  end.
Proof.
  intros Hp. unfold VersionPolicy.check_compatibility, SchemaVersion.is_older_than,
    SchemaVersion.is_newer_than.
  destruct (N.ltb_spec (SchemaVersion.major (VersionPolicy.current_version p))
    (SchemaVersion.major v)); [done|].
  destruct (N.ltb_spec (SchemaVersion.major v) (VersionPolicy.min_major p)) as [Hlt|Hge];
    [|lia].
  simpl. apply N.ltb_lt in Hlt. by rewrite Hlt.
Qed.

Lemma check_compatibility_spec_witness :
  1 ≤ 2 ∧
  SchemaVersion.is_older_than (SchemaVersion.new 0 7)
    (VersionPolicy.min_version (VersionPolicy.with_min_major 1 (VersionPolicy.current 2 0))) = true.
Proof.
  split; [lia|].
  apply (check_compatibility_spec (VersionPolicy.with_min_major 1 (VersionPolicy.current 2 0))
           (SchemaVersion.new 0 7)). simpl. lia.
Defined.

End SchemaSpec.
