(* ===== verification/Policy.v ===== *)
(** * Policy engines ([policy/src/lib.rs])

    Capability sets and derived authority, decisions, the three engines the
    repository ships, and their composition.  The trait object [dyn PolicyEngine]
    is a record of its two operations; the trait requires engines to be
    deterministic and free of side effects, so [evaluate] is a function. *)

From S2P Require Import Prelude CoreTypes Resources Identity.
Open Scope string_scope.
Open Scope list_scope.
Open Scope N_scope.

Module PipelineId.
(* pipeline/src/lib.rs:30-32 PipelineId *)
Record t := mk { uuid : Uuid }.
End PipelineId.

Module StageId.
(* pipeline/src/lib.rs:53-55 StageId *)
Record t := mk { uuid : Uuid }.
End StageId.

(** ** Capability sets *)
Module CapabilitySet.
(* policy/src/lib.rs:45-57 CapabilitySet *)
Record t := mk { capabilities : gset N }.
(* policy/src/lib.rs:60-65 CapabilitySet::new *)
Definition new : t := mk ∅.
(* policy/src/lib.rs:67-72 CapabilitySet::from_capabilities *)
Definition from_capabilities (caps : list N) : t := mk (list_to_set caps).
(* policy/src/lib.rs:74-79 CapabilitySet::is_subset_of *)
Definition is_subset_of (self other : t) : bool :=
  bool_decide (capabilities self ⊆ capabilities other).
(* policy/src/lib.rs:81-90 CapabilitySet::intersection *)
Definition intersection (self other : t) : t :=
  mk (capabilities self ∩ capabilities other).
(* policy/src/lib.rs:92-101 CapabilitySet::difference *)
Definition difference (self other : t) : t :=
  mk (capabilities self ∖ capabilities other).
(* policy/src/lib.rs:103-106 CapabilitySet::is_empty *)
Definition is_empty (self : t) : bool := bool_decide (capabilities self = ∅).
(* policy/src/lib.rs:108-111 CapabilitySet::len *)
Definition len (self : t) : N := N.of_nat (size (capabilities self)).
(* policy/src/lib.rs:113-118 CapabilitySet::to_vec *)
Definition to_vec (self : t) : list N := merge_sort N.le (elements (capabilities self)).
End CapabilitySet.

Module DerivedAuthority.
(* policy/src/lib.rs:127-138 DerivedAuthority *)
Record t := mk { capabilities : CapabilitySet.t; constraints : list string }.
#[global] Instance rebuild_t : Rebuild t := λ d, mk (capabilities d) (constraints d).
(* policy/src/lib.rs:141-147 DerivedAuthority::new *)
Definition new (caps : CapabilitySet.t) : t := mk caps [].
(* policy/src/lib.rs:149-152 DerivedAuthority::from_capabilities *)
Definition from_capabilities (caps : list N) : t :=
  new (CapabilitySet.from_capabilities caps).
(* policy/src/lib.rs:154-158 DerivedAuthority::with_constraint *)
Definition with_constraint (c : string) (d : t) : t := d <| constraints ::= λ cs, cs ++ [c] |>.
End DerivedAuthority.

Module CapabilityDelta.
(* policy/src/lib.rs:161-174 CapabilityDelta *)
Record t := mk { removed : list N; restricted : list string; added : list N }.
(* policy/src/lib.rs:177-184 CapabilityDelta::new *)
Definition new : t := mk [] [] [].
(* policy/src/lib.rs:186-199 CapabilityDelta::from *)
Definition from (before after : CapabilitySet.t) : t :=
  mk (CapabilitySet.to_vec (CapabilitySet.difference before after)) []
     (CapabilitySet.to_vec (CapabilitySet.difference after before)).
(* policy/src/lib.rs:201-204 CapabilityDelta::is_empty *)
Definition is_empty (d : t) : bool :=
  bool_decide (removed d = []) && bool_decide (restricted d = []) && bool_decide (added d = []).
End CapabilityDelta.

(** ** Decisions, contexts and events *)
Module PolicyDecision.
(* policy/src/lib.rs:213-228 PolicyDecision *)
Inductive t :=
| Allow (derived : option DerivedAuthority.t)
| Deny (reason : string)
| Require (action : string).
(* policy/src/lib.rs:257-260 PolicyDecision::is_allow *)
Definition is_allow (d : t) : bool := match d with Allow _ => true | _ => false end.
(* policy/src/lib.rs:262-265 PolicyDecision::is_deny *)
Definition is_deny (d : t) : bool := match d with Deny _ => true | _ => false end.
(* policy/src/lib.rs:267-270 PolicyDecision::is_require *)
Definition is_require (d : t) : bool := match d with Require _ => true | _ => false end.
(* policy/src/lib.rs:272-278 PolicyDecision::derived_authority *)
Definition derived_authority (d : t) : option DerivedAuthority.t :=
  match d with Allow derived => derived | _ => None end.
End PolicyDecision.

Module PolicyContext.
(* policy/src/lib.rs:297-315 PolicyContext *)
Record t := mk {
  actor_identity : IdentityMetadata.t;
  target_identity : option IdentityMetadata.t;
  capability_id : option N;
  pipeline_id : option PipelineId.t;
  stage_id : option StageId.t;
  metadata : list (string * string)
}.
#[global] Instance rebuild_t : Rebuild t := λ c,
  mk (actor_identity c) (target_identity c) (capability_id c) (pipeline_id c) (stage_id c)
     (metadata c).
(* policy/src/lib.rs:318-328 PolicyContext::for_spawn *)
Definition for_spawn (actor target : IdentityMetadata.t) : t :=
  mk actor (Some target) None None None [].
(* policy/src/lib.rs:330-344 PolicyContext::for_capability_delegation *)
Definition for_capability_delegation (from_identity to_identity : IdentityMetadata.t)
    (cap_id : N) : t :=
  mk from_identity (Some to_identity) (Some cap_id) None None [].
(* policy/src/lib.rs:346-356 PolicyContext::for_pipeline *)
Definition for_pipeline (actor : IdentityMetadata.t) (pid : PipelineId.t) : t :=
  mk actor None None (Some pid) None [].
(* policy/src/lib.rs:358-362 PolicyContext::with_metadata *)
Definition with_metadata (key value : string) (c : t) : t :=
  c <| metadata ::= λ l, l ++ [(key, value)] |>.
(* policy/src/lib.rs:364-371 PolicyContext::is_same_domain *)
Definition is_same_domain (c : t) : bool :=
  match target_identity c with
  | Some target => IdentityMetadata.same_domain (actor_identity c) target
  | None => true
  end.
(* policy/src/lib.rs:373-376 PolicyContext::is_cross_domain *)
Definition is_cross_domain (c : t) : bool := negb (is_same_domain c).
End PolicyContext.

Module PolicyEvent.
(* policy/src/lib.rs:379-396 PolicyEvent *)
Inductive t :=
| OnSpawn | OnTerminate | OnCapabilityDelegate
| OnPipelineStart | OnPipelineStageStart | OnPipelineStageEnd.
End PolicyEvent.

(** The trait [PolicyEngine]. *)
Module PolicyEngine.
(* policy/src/lib.rs:411-424 PolicyEngine *)
Record t := mk {
  evaluate : PolicyEvent.t → PolicyContext.t → PolicyDecision.t;
  name : string
}.
End PolicyEngine.

(** ** The engines *)

(* policy/src/lib.rs:426-440 NoOpPolicy *)
Definition NoOpPolicy : PolicyEngine.t :=
  PolicyEngine.mk (λ _ _, PolicyDecision.Allow None) "NoOpPolicy".

Module TrustDomainPolicy.
(* policy/src/lib.rs:450-489 TrustDomainPolicy::evaluate *)
Definition evaluate (event : PolicyEvent.t) (context : PolicyContext.t) : PolicyDecision.t :=
  let actor_domain := IdentityMetadata.trust_domain (PolicyContext.actor_identity context) in
  let target_is_some_and (P : IdentityMetadata.t → bool) :=
    match PolicyContext.target_identity context with Some x => P x | None => false end in
  match event with
  | PolicyEvent.OnSpawn =>
      if bool_decide (actor_domain = TrustDomain.sandbox)
         && target_is_some_and (λ x, bool_decide (IdentityMetadata.kind x = IdentityKind.System))
      then PolicyDecision.Deny "Sandbox domain cannot spawn System services"
      else if bool_decide (actor_domain = TrustDomain.sandbox)
         && target_is_some_and
              (λ x, bool_decide (IdentityMetadata.trust_domain x = TrustDomain.core))
      then PolicyDecision.Deny "Sandbox domain cannot spawn services in core domain"
      else PolicyDecision.Allow None
  | PolicyEvent.OnCapabilityDelegate =>
      if PolicyContext.is_cross_domain context
      then PolicyDecision.Require "Cross-domain capability delegation requires explicit approval"
      else PolicyDecision.Allow None
  | _ => PolicyDecision.Allow None
  end.
(* policy/src/lib.rs:442-494 TrustDomainPolicy *)
Definition engine : PolicyEngine.t := PolicyEngine.mk evaluate "TrustDomainPolicy".
End TrustDomainPolicy.

(** [str::parse::<usize>]: an optional sign [+], then one or more decimal digits
    whose value fits in 64 bits. *)
Definition digit_value (c : Ascii.ascii) : option N :=
  let n := Ascii.N_of_ascii c in
  if (48 <=? n) && (n <=? 57) then Some (n - 48) else None.

Fixpoint parse_digits (acc : N) (l : list Ascii.ascii) : option N :=
  match l with
  | [] => Some acc
  | c :: l' =>
      d ← digit_value c;
      if acc * 10 + d <=? u64_max then parse_digits (acc * 10 + d) l' else None
  end.

Definition parse_usize (s : string) : option N :=
  match String.list_ascii_of_string s with
  | [] => None
  | c :: rest =>
      if Ascii.N_of_ascii c =? 43
      then match rest with [] => None | _ => parse_digits 0 rest end
      else parse_digits 0 (c :: rest)
  end.

Module PipelineSafetyPolicy.
(* policy/src/lib.rs:496-505 PipelineSafetyPolicy *)
Record t := mk { max_stages_unsupervised : N }.
(* policy/src/lib.rs:508-513 PipelineSafetyPolicy::new *)
Definition new : t := mk 5.
(* policy/src/lib.rs:515-520 PipelineSafetyPolicy::with_max_stages *)
Definition with_max_stages (max_stages : N) : t := mk max_stages.
(** The second check: the declared number of stages. *)
(* policy/src/lib.rs:545-561 PipelineSafetyPolicy::evaluate *)
Definition check_stage_count (self : t) (context : PolicyContext.t) : PolicyDecision.t :=
  match list_find (λ kv, kv.1 = "stage_count") (PolicyContext.metadata context) with
  | Some (_, (_, stage_count_str)) =>
      match parse_usize stage_count_str with
      | Some stage_count =>
          if max_stages_unsupervised self <? stage_count
          then PolicyDecision.Require
                 ("Pipelines with " +:+ pretty stage_count
                  +:+ " stages require supervision (max unsupervised: "
                  +:+ pretty (max_stages_unsupervised self) +:+ ")")
          else PolicyDecision.Allow None
      | None => PolicyDecision.Allow None
      end
  | None => PolicyDecision.Allow None
  end.
(* policy/src/lib.rs:529-565 PipelineSafetyPolicy::evaluate *)
Definition evaluate (self : t) (event : PolicyEvent.t) (context : PolicyContext.t)
    : PolicyDecision.t :=
  match event with
  | PolicyEvent.OnPipelineStart =>
      if bool_decide (IdentityMetadata.trust_domain (PolicyContext.actor_identity context)
                      = TrustDomain.user)
         && negb (existsb (λ kv, bool_decide (kv.1 = "timeout_ms"))
                    (PolicyContext.metadata context))
      then PolicyDecision.Require "Pipelines in user domain must specify a timeout"
      else check_stage_count self context
  | _ => PolicyDecision.Allow None
  end.
(* policy/src/lib.rs:529-570 PipelineSafetyPolicy *)
Definition engine (self : t) : PolicyEngine.t :=
  PolicyEngine.mk (evaluate self) "PipelineSafetyPolicy".
End PipelineSafetyPolicy.

(** ** Composition *)
Module ComposedPolicy.
(* policy/src/lib.rs:572-580 ComposedPolicy *)
Record t := mk { policies : list PolicyEngine.t }.
#[global] Instance rebuild_t : Rebuild t := λ c, mk (policies c).
(* policy/src/lib.rs:583-588 ComposedPolicy::new *)
Definition new : t := mk [].
(* policy/src/lib.rs:590-594 ComposedPolicy::add_policy *)
Definition add_policy (p : PolicyEngine.t) (c : t) : t := c <| policies ::= λ l, l ++ [p] |>.

(** The loop of [evaluate_all], with its two accumulators. *)
(* policy/src/lib.rs:607-643 ComposedPolicy::evaluate_all *)
Fixpoint evaluate_loop (ps : list PolicyEngine.t) (event : PolicyEvent.t)
    (context : PolicyContext.t) (requires : list string)
    (most_restrictive_derived : option DerivedAuthority.t) : PolicyDecision.t :=
  match ps with
  | [] =>
      match requires with
      | [] => PolicyDecision.Allow most_restrictive_derived
      | _ => PolicyDecision.Require (String.concat "; " requires)
      end
  | p :: ps' =>
      match PolicyEngine.evaluate p event context with
      | PolicyDecision.Deny reason => PolicyDecision.Deny reason
      | PolicyDecision.Require action =>
          evaluate_loop ps' event context (requires ++ [action]) most_restrictive_derived
      | PolicyDecision.Allow None =>
          evaluate_loop ps' event context requires most_restrictive_derived
      | PolicyDecision.Allow (Some new_derived) =>
          let d := match most_restrictive_derived with
                   | None => new_derived
                   | Some existing =>
                       DerivedAuthority.new
                         (CapabilitySet.intersection (DerivedAuthority.capabilities existing)
                            (DerivedAuthority.capabilities new_derived))
                   end in
          evaluate_loop ps' event context requires (Some d)
      end
  end.
(* policy/src/lib.rs:596-644 ComposedPolicy::evaluate_all *)
Definition evaluate_all (c : t) (event : PolicyEvent.t) (context : PolicyContext.t)
    : PolicyDecision.t :=
  evaluate_loop (policies c) event context [] None.
(* policy/src/lib.rs:653-661 PolicyEngine for ComposedPolicy *)
Definition engine (c : t) : PolicyEngine.t := PolicyEngine.mk (evaluate_all c) "ComposedPolicy".
End ComposedPolicy.

(** ** Reports *)
Module PolicyEvaluation.
(* policy/src/lib.rs:689-696 PolicyEvaluation *)
Record t := mk { policy_name : string; decision : PolicyDecision.t }.
End PolicyEvaluation.

Module PolicyDecisionReport.
(* policy/src/lib.rs:663-687 PolicyDecisionReport *)
Record t := mk {
  decision : PolicyDecision.t;
  evaluated_policies : list PolicyEvaluation.t;
  deny_reason : option string;
  required_actions : list string;
  input_capabilities : option CapabilitySet.t;
  output_capabilities : option CapabilitySet.t;
  capability_delta : option CapabilityDelta.t
}.
#[global] Instance rebuild_t : Rebuild t := λ r,
  mk (decision r) (evaluated_policies r) (deny_reason r) (required_actions r)
     (input_capabilities r) (output_capabilities r) (capability_delta r).
(* policy/src/lib.rs:699-720 PolicyDecisionReport::new *)
Definition new (policy_name : string) (d : PolicyDecision.t) : t :=
  let '(deny, required) :=
    match d with
    | PolicyDecision.Deny reason => (Some reason, [])
    | PolicyDecision.Require action => (None, [action])
    | PolicyDecision.Allow _ => (None, [])
    end in
  mk d [PolicyEvaluation.mk policy_name d] deny required None None None.
(* policy/src/lib.rs:722-736 PolicyDecisionReport::with_capabilities *)
Definition with_capabilities (input : CapabilitySet.t) (output : option CapabilitySet.t) (r : t)
    : t :=
  let delta := CapabilityDelta.from input <$> output in
  r <| input_capabilities := Some input |>
    <| output_capabilities := output |>
    <| capability_delta := delta |>.
(* policy/src/lib.rs:738-775 PolicyDecisionReport::from_composed *)
Definition from_composed (evaluations : list (string * PolicyDecision.t))
    (final_decision : PolicyDecision.t) : t :=
  let '(deny, required) :=
    foldl (λ '(deny, required) '(_, d),
             match d with
             | PolicyDecision.Deny reason =>
                 (match deny with None => Some reason | Some r => Some r end, required)
             | PolicyDecision.Require action => (deny, required ++ [action])
             | PolicyDecision.Allow _ => (deny, required)
             end) (None, []) evaluations in
  mk final_decision ((λ '(n, d), PolicyEvaluation.mk n d) <$> evaluations) deny required
     None None None.
End PolicyDecisionReport.

(* policy/src/lib.rs:794-809 ComposedPolicy::evaluate_with_report *)
Definition evaluate_with_report (c : ComposedPolicy.t) (event : PolicyEvent.t)
    (context : PolicyContext.t) : PolicyDecisionReport.t :=
  let evaluations :=
    (λ p, (PolicyEngine.name p, PolicyEngine.evaluate p event context))
      <$> ComposedPolicy.policies c in
  PolicyDecisionReport.from_composed evaluations (ComposedPolicy.evaluate_all c event context).

(** ** Properties *)
Module PolicySpec.

(** What a composition is meant to do with the decisions of its members, read
    off the decisions alone. *)
Definition decisions (c : ComposedPolicy.t) (event : PolicyEvent.t) (context : PolicyContext.t)
    : list PolicyDecision.t :=
  (λ p, PolicyEngine.evaluate p event context) <$> ComposedPolicy.policies c.

Definition denial (d : PolicyDecision.t) : option string :=
  match d with PolicyDecision.Deny r => Some r | _ => None end.
Definition requirement (d : PolicyDecision.t) : option string :=
  match d with PolicyDecision.Require a => Some a | _ => None end.

Definition first_denial (ds : list PolicyDecision.t) : option string := head (omap denial ds).

(** The capabilities that every member that derives an authority leaves. *)
Definition in_every_derived (ds : list PolicyDecision.t) (cap : N) : Prop :=
  ∀ d, Some d ∈ (PolicyDecision.derived_authority <$> ds) →
       cap ∈ CapabilitySet.capabilities (DerivedAuthority.capabilities d).

Definition restrict (acc : option DerivedAuthority.t) (d : DerivedAuthority.t)
    : option DerivedAuthority.t :=
  Some (match acc with
        | None => d
        | Some existing =>
            DerivedAuthority.new
              (CapabilitySet.intersection (DerivedAuthority.capabilities existing)
                 (DerivedAuthority.capabilities d))
        end).

Definition combine_decisions (ds : list PolicyDecision.t) (requires : list string)
    (acc : option DerivedAuthority.t) : PolicyDecision.t :=
  match first_denial ds with
  | Some r => PolicyDecision.Deny r
  | None =>
      match requires ++ omap requirement ds with
      | [] => PolicyDecision.Allow (foldl restrict acc (omap PolicyDecision.derived_authority ds))
      | l => PolicyDecision.Require (String.concat "; " l)
      end
  end.

Lemma evaluate_loop_combine ps event context requires acc :
  ComposedPolicy.evaluate_loop ps event context requires acc =
  combine_decisions ((λ p, PolicyEngine.evaluate p event context) <$> ps) requires acc.
Proof.
  revert requires acc. induction ps as [|p ps IH]; intros requires acc.
  - unfold combine_decisions; simpl. rewrite app_nil_r. by destruct requires.
  - simpl. destruct (PolicyEngine.evaluate p event context) as [[d|]|r|a] eqn:E;
      unfold combine_decisions, first_denial in *; simpl; rewrite ?E; simpl; try done;
      rewrite IH; try done.
    by rewrite <- app_assoc.
Qed.

Lemma restrict_caps acc ds cap :
  (∃ d, foldl restrict acc ds = Some d ∧
        (cap ∈ CapabilitySet.capabilities (DerivedAuthority.capabilities d) ↔
         Forall (λ x, cap ∈ CapabilitySet.capabilities (DerivedAuthority.capabilities x))
           (option_list acc ++ ds)))
  ∨ (acc = None ∧ ds = []).
Proof.
  revert acc. induction ds as [|d ds IH]; intros acc; simpl.
  - destruct acc as [a|]; [left|by right]. exists a. simpl. by rewrite Forall_singleton.
  - left. destruct (IH (restrict acc d)) as [(x & -> & Hx)|[? ?]]; [|done].
    exists x. split; [done|]. rewrite Hx. destruct acc as [a|]; simpl; [|done].
    rewrite !Forall_cons; simpl. rewrite elem_of_intersection. tauto.
Qed.

Lemma elem_of_omap_derived (ds : list PolicyDecision.t) (x : DerivedAuthority.t) :
  x ∈ omap PolicyDecision.derived_authority ds ↔
  Some x ∈ (PolicyDecision.derived_authority <$> ds).
Proof. rewrite list_elem_of_omap, list_elem_of_fmap. naive_solver. Qed.

(** Composing policies is exactly: the first denial in order wins; with no
    denial, every requirement is kept, in order, joined by "; "; with neither, the
    operation is allowed, with the authority restricted by each member in turn. *)
Theorem evaluate_all_refines_combination c event context :
  ComposedPolicy.evaluate_all c event context =
  combine_decisions (decisions c event context) [] None.
Proof. apply evaluate_loop_combine. Qed.

(** A composition allows an operation only when every member allows it, and
    any member that denies makes the composition deny. *)
Theorem composed_allow_iff_all_allow c event context :
  PolicyDecision.is_allow (ComposedPolicy.evaluate_all c event context) = true ↔
  Forall (λ d, PolicyDecision.is_allow d = true) (decisions c event context).
Proof.
  unfold ComposedPolicy.evaluate_all. rewrite evaluate_loop_combine.
  unfold decisions. generalize ((λ p, PolicyEngine.evaluate p event context)
    <$> ComposedPolicy.policies c); intros ds.
  unfold combine_decisions, first_denial. simpl.
  transitivity (omap denial ds = [] ∧ omap requirement ds = []).
  - destruct (omap denial ds); simpl; [|naive_solver].
    destruct (omap requirement ds); naive_solver.
  - induction ds as [|[| |] ds IH]; simpl; rewrite ?Forall_cons; naive_solver.
Qed.

(** Composition never adds authority: when the composition allows with a
    derived authority, its capabilities are exactly those that every member that
    derived an authority left. *)
Theorem composed_authority_is_intersection c event context d cap :
  ComposedPolicy.evaluate_all c event context = PolicyDecision.Allow (Some d) →
  cap ∈ CapabilitySet.capabilities (DerivedAuthority.capabilities d) ↔
  in_every_derived (decisions c event context) cap.
Proof.
  unfold ComposedPolicy.evaluate_all. rewrite evaluate_loop_combine.
  unfold decisions. generalize ((λ p, PolicyEngine.evaluate p event context)
    <$> ComposedPolicy.policies c); intros ds.
  unfold combine_decisions. repeat case_match; intros; simplify_eq.
  destruct (restrict_caps None (omap PolicyDecision.derived_authority ds) cap)
    as [(x & Hx & Hcap)|[_ Hnil]]; [|rewrite Hnil in *; done].
  simplify_eq. rewrite Hcap, Forall_forall. unfold in_every_derived. simpl.
  by setoid_rewrite elem_of_omap_derived.
Qed.

(** A member that leaves capabilities 1, 2 and 3, and one that leaves 2 and 4. *)
Definition restricting_engine (caps : list N) : PolicyEngine.t :=
  PolicyEngine.mk (λ _ _, PolicyDecision.Allow (Some (DerivedAuthority.from_capabilities caps)))
    "restricting".
Definition sample_identity : IdentityMetadata.t :=
  IdentityMetadata.new (ExecutionId.mk 1) IdentityKind.Component TrustDomain.user "sample" 0.

Lemma composed_authority_is_intersection_witness :
  in_every_derived
    (decisions (ComposedPolicy.mk [restricting_engine [1; 2; 3]; restricting_engine [2; 4]])
       PolicyEvent.OnSpawn (PolicyContext.for_spawn sample_identity sample_identity)) 2.
Proof.
  eapply (composed_authority_is_intersection
    (ComposedPolicy.mk [restricting_engine [1; 2; 3]; restricting_engine [2; 4]])
    PolicyEvent.OnSpawn (PolicyContext.for_spawn sample_identity sample_identity)).
  - reflexivity.
  - simpl. set_solver.
Defined.

Lemma report_fold ds deny req :
  foldl (λ '(deny, required) '(_, d),
           match d with
           | PolicyDecision.Deny reason =>
               (match deny with None => Some reason | Some r => Some r end, required)
           | PolicyDecision.Require action => (deny, required ++ [action])
           | PolicyDecision.Allow _ => (deny, required)
           end) (deny, req) (ds : list (string * PolicyDecision.t)) =
  (match deny with Some r => Some r | None => first_denial (ds.*2) end,
   req ++ omap requirement (ds.*2)).
Proof.
  revert deny req. unfold first_denial.
  induction ds as [|[n [| |]] ds IH]; intros deny req; simpl.
  - rewrite app_nil_r. by destruct deny.
  - by rewrite IH.
  - rewrite IH. by destruct deny.
  - rewrite IH, <- app_assoc. by destruct deny.
Qed.

(** The report of a composed evaluation agrees with its decision: it records
    a denial reason exactly when the decision is that denial, and a decision that
    requires actions lists the actions the report collected. *)
Theorem report_agrees_with_decision c event context :
  let r := evaluate_with_report c event context in
  PolicyDecisionReport.decision r = ComposedPolicy.evaluate_all c event context ∧
  (∀ reason, PolicyDecisionReport.deny_reason r = Some reason ↔
             PolicyDecisionReport.decision r = PolicyDecision.Deny reason) ∧
  (∀ action, PolicyDecisionReport.decision r = PolicyDecision.Require action →
             action = String.concat "; " (PolicyDecisionReport.required_actions r)).
Proof.
  unfold evaluate_with_report, PolicyDecisionReport.from_composed.
  unfold ComposedPolicy.evaluate_all. rewrite evaluate_loop_combine, report_fold. simpl.
  rewrite <- list_fmap_compose. unfold compose. simpl.
  unfold combine_decisions. simpl. split_and!; [done|..].
  - intros reason. destruct (first_denial _); [naive_solver|].
    destruct (omap requirement _); naive_solver.
  - intros action. destruct (first_denial _); [done|].
    destruct (omap requirement _); naive_solver.
Qed.

(** Under the trust-domain policy a sandboxed creator can spawn neither a
    system identity nor anything in the core domain, and a delegation is allowed
    exactly within one trust domain. *)
Theorem trust_domain_policy_isolates actor target cap :
  (IdentityMetadata.trust_domain actor = TrustDomain.sandbox →
   (IdentityMetadata.kind target = IdentityKind.System ∨
    IdentityMetadata.trust_domain target = TrustDomain.core) →
   PolicyDecision.is_deny
     (TrustDomainPolicy.evaluate PolicyEvent.OnSpawn (PolicyContext.for_spawn actor target))
     = true) ∧
  (PolicyDecision.is_allow
     (TrustDomainPolicy.evaluate PolicyEvent.OnCapabilityDelegate
        (PolicyContext.for_capability_delegation actor target cap)) = true ↔
   IdentityMetadata.trust_domain actor = IdentityMetadata.trust_domain target).
Proof.
  split.
  - intros Ha Ht. unfold TrustDomainPolicy.evaluate; simpl.
    rewrite (bool_decide_true (_ = TrustDomain.sandbox)) by done; simpl.
    repeat case_bool_decide; naive_solver.
  - unfold TrustDomainPolicy.evaluate, PolicyContext.is_cross_domain,
      PolicyContext.is_same_domain, IdentityMetadata.same_domain; simpl.
    case_bool_decide; simpl; naive_solver.
Qed.

Lemma elem_of_to_vec s x : x ∈ CapabilitySet.to_vec s ↔ x ∈ CapabilitySet.capabilities s.
Proof.
  unfold CapabilitySet.to_vec. rewrite merge_sort_Permutation. apply elem_of_elements.
Qed.

(** A capability delta is exact: removing what it lists as removed and adding
    what it lists as added turns the set before into the set after, and it is
    empty exactly when the two sets are equal. *)
Theorem capability_delta_roundtrip before after :
  let d := CapabilityDelta.from before after in
  (CapabilitySet.capabilities before ∖ list_to_set (CapabilityDelta.removed d))
    ∪ list_to_set (CapabilityDelta.added d) = CapabilitySet.capabilities after ∧
  (CapabilityDelta.is_empty d = true ↔ before = after).
Proof.
  intros d. subst d. destruct before as [b], after as [a]. split.
  - apply set_eq. intros x.
    rewrite elem_of_union, elem_of_difference, !elem_of_list_to_set.
    simpl. rewrite !elem_of_to_vec. simpl. rewrite !elem_of_difference.
    destruct (decide (x ∈ a)), (decide (x ∈ b)); tauto.
  - unfold CapabilityDelta.is_empty; simpl.
    rewrite !andb_true_iff, !bool_decide_eq_true. split.
    + intros [[H1 _] H2]. f_equal. apply set_eq. intros x.
      assert (x ∉ CapabilitySet.to_vec (CapabilitySet.difference
        (CapabilitySet.mk b) (CapabilitySet.mk a))) as Hb by (rewrite H1; apply not_elem_of_nil).
      assert (x ∉ CapabilitySet.to_vec (CapabilitySet.difference
        (CapabilitySet.mk a) (CapabilitySet.mk b))) as Ha by (rewrite H2; apply not_elem_of_nil).
      rewrite elem_of_to_vec in Ha, Hb. simpl in *.
      rewrite elem_of_difference in Ha, Hb.
      destruct (decide (x ∈ a)), (decide (x ∈ b)); tauto.
    + intros [= ->]. unfold CapabilitySet.to_vec; simpl.
      rewrite difference_diag_L, elements_empty. done.
Qed.

End PolicySpec.
