(* ===== verification/Queue.v ===== *)
(** * Bounded message queues and the simulated timer

    [sim_kernel/src/message_queue.rs] and [sim_kernel/src/timer.rs], with the
    abstract bounded FIFO that a channel promises to its clients. *)

From S2P Require Import Prelude CoreTypes Ipc.
Open Scope N_scope.

Module QueueError.
(* sim_kernel/src/message_queue.rs:8-12 QueueError *)
Inductive t := Full.
End QueueError.

Module MessageQueue.
(* sim_kernel/src/message_queue.rs:14-19 MessageQueue *)
Record t := mk { capacity : N; messages : list MessageEnvelope.t }.
#[global] Instance rebuild_t : Rebuild t := λ q, mk (capacity q) (messages q).
(* sim_kernel/src/message_queue.rs:22-28 MessageQueue::with_capacity *)
Definition with_capacity (capacity : N) : t := mk capacity [].
(* sim_kernel/src/message_queue.rs:35-38 MessageQueue::len *)
Definition len (q : t) : N := len (messages q).
(* sim_kernel/src/message_queue.rs:40-43 MessageQueue::is_empty *)
Definition is_empty (q : t) : bool := bool_decide (messages q = []).
(* sim_kernel/src/message_queue.rs:45-48 MessageQueue::remaining_capacity *)
Definition remaining_capacity (q : t) : N := saturating_sub (capacity q) (len q).
(* sim_kernel/src/message_queue.rs:50-57 MessageQueue::push *)
Definition push (message : MessageEnvelope.t) (q : t) : result unit QueueError.t * t :=
  if capacity q <=? len q
  then (Err QueueError.Full, q)
  else (Ok tt, q <| messages ::= λ l, l ++ [message] |>).
(* sim_kernel/src/message_queue.rs:59-62 MessageQueue::pop *)
Definition pop (q : t) : option MessageEnvelope.t * t :=
  match messages q with
  | [] => (None, q)
  | m :: l => (Some m, q <| messages := l |>)
  end.
End MessageQueue.

Module SimTimerDevice.
(* sim_kernel/src/timer.rs:22-47 SimTimerDevice *)
Record t := mk { ticks : N }.
#[global] Instance rebuild_t : Rebuild t := λ d, mk (ticks d).
(* sim_kernel/src/timer.rs:50-53 SimTimerDevice::new *)
Definition new : t := mk 0.
(* sim_kernel/src/timer.rs:55-60 SimTimerDevice::with_initial_ticks *)
Definition with_initial_ticks (n : N) : t := mk n.
(* sim_kernel/src/timer.rs:62-76 SimTimerDevice::advance_ticks *)
Definition advance_ticks (delta : N) (d : t) : outcome t :=
  n ← expect (checked_add (ticks d) delta); Return (d <| ticks := n |>).
(* sim_kernel/src/timer.rs:78-98 SimTimerDevice::set_ticks *)
Definition set_ticks (new_ticks : N) (d : t) : outcome t :=
  if ticks d <=? new_ticks then Return (d <| ticks := new_ticks |>) else Panic.
(* sim_kernel/src/timer.rs:100-106 SimTimerDevice::current_ticks *)
Definition current_ticks (d : t) : N := ticks d.
(* sim_kernel/src/timer.rs:115-119 SimTimerDevice::poll_ticks *)
Definition poll_ticks (d : t) : N * t := (ticks d, d).
End SimTimerDevice.

(** ** The abstract bounded FIFO

    What a queue promises: it holds a sequence of at most [capacity] messages,
    enqueueing appends, dequeueing takes the oldest. *)
Class BoundedFifo (Q A : Type) := {
  bf_capacity : Q → N;
  bf_contents : Q → list A;
  bf_push : A → Q → bool * Q;
  bf_pop : Q → option A * Q;
  bf_push_capacity a q : bf_capacity (bf_push a q).2 = bf_capacity q;
  bf_pop_capacity q : bf_capacity (bf_pop q).2 = bf_capacity q;
  bf_push_room a q :
    N.of_nat (length (bf_contents q)) < bf_capacity q →
    (bf_push a q).1 = true ∧ bf_contents (bf_push a q).2 = bf_contents q ++ [a];
  bf_push_full a q :
    bf_capacity q ≤ N.of_nat (length (bf_contents q)) → bf_push a q = (false, q);
  bf_pop_contents q :
    (bf_pop q).1 = head (bf_contents q) ∧ bf_contents (bf_pop q).2 = tail (bf_contents q)
}.

(** The queue of the kernel keeps that promise. *)
#[local] Obligation Tactic := idtac.
#[global] Program Instance message_queue_fifo : BoundedFifo MessageQueue.t MessageEnvelope.t := {|
  bf_capacity := MessageQueue.capacity;
  bf_contents := MessageQueue.messages;
  bf_push m q := let '(r, q') := MessageQueue.push m q in (is_ok r, q');
  bf_pop := MessageQueue.pop
|}.
Next Obligation. intros m q. unfold MessageQueue.push. by destruct (_ <=? _). Qed.
Next Obligation. intros q. unfold MessageQueue.pop. by destruct (MessageQueue.messages q). Qed.
Next Obligation.
  intros m q H. unfold MessageQueue.push, MessageQueue.len, len.
  destruct (N.leb_spec (MessageQueue.capacity q) (N.of_nat (length (MessageQueue.messages q))));
    [lia|done].
Qed.
Next Obligation.
  intros m q H. unfold MessageQueue.push, MessageQueue.len, len.
  destruct (N.leb_spec (MessageQueue.capacity q) (N.of_nat (length (MessageQueue.messages q))));
    [done|lia].
Qed.
Next Obligation.
  intros q. unfold MessageQueue.pop. destruct (MessageQueue.messages q) eqn:E; simpl; by rewrite ?E.
Qed.

(** Theorems about any bounded FIFO, against the interface. *)
Section fifo_clients.
Context {Q A : Type} `{BoundedFifo Q A}.
Implicit Types q : Q.

Definition bf_push_all (l : list A) (q : Q) : Q := foldl (λ q a, (bf_push a q).2) q l.

Fixpoint bf_drain (n : nat) (q : Q) : list A * Q :=
  match n with
  | O => ([], q)
  | S n => match bf_pop q with
           | (Some a, q') => let '(l, q'') := bf_drain n q' in (a :: l, q'')
           | (None, q') => ([], q')
           end
  end.

Lemma bf_bound_push a q :
  N.of_nat (length (bf_contents q)) ≤ bf_capacity q →
  N.of_nat (length (bf_contents (bf_push a q).2)) ≤ bf_capacity (bf_push a q).2.
Proof.
  intros Hq. rewrite bf_push_capacity.
  destruct (N.lt_ge_cases (N.of_nat (length (bf_contents q))) (bf_capacity q)) as [Hlt|Hge].
  - destruct (bf_push_room a q Hlt) as [_ ->]. rewrite length_app. simpl. lia.
  - by rewrite bf_push_full.
Qed.

Lemma bf_push_all_contents l q :
  N.of_nat (length (bf_contents q) + length l) ≤ bf_capacity q →
  bf_contents (bf_push_all l q) = bf_contents q ++ l.
Proof.
  revert q. induction l as [|a l IH]; intros q Hq; simpl; [by rewrite app_nil_r|].
  destruct (bf_push_room a q) as [_ E]; [simpl in Hq; lia|].
  change (bf_contents (bf_push_all l (bf_push a q).2) = bf_contents q ++ a :: l).
  rewrite IH, E; [by rewrite <- app_assoc|].
  rewrite bf_push_capacity, E, length_app. simpl in *. lia.
Qed.

Lemma bf_drain_contents n q :
  (bf_drain n q).1 = take n (bf_contents q) ∧
  bf_contents (bf_drain n q).2 = drop n (bf_contents q).
Proof.
  revert q. induction n as [|n IH]; intros q; simpl; [done|].
  destruct (bf_pop_contents q) as [E1 E2]. destruct (bf_pop q) as [[a|] q']; simpl in *.
  - destruct (IH q') as [I1 I2]. destruct (bf_drain n q') as [l q'']; simpl in *.
    rewrite E2 in I1, I2. destruct (bf_contents q); simplify_eq/=; split; congruence.
  - rewrite E2. by destruct (bf_contents q); simplify_eq/=.
Qed.
End fifo_clients.

Module QueueSpec.

(** A queue delivers first-in first-out: pushing a batch that fits after the
    current contents and then popping everything yields the old contents followed
    by the batch, and leaves the queue empty. *)
Theorem queue_push_drain_roundtrip (q : MessageQueue.t) (batch : list MessageEnvelope.t) :
  N.of_nat (length (MessageQueue.messages q) + length batch) ≤ MessageQueue.capacity q →
  let '(out, q') :=
    bf_drain (length (MessageQueue.messages q) + length batch) (bf_push_all batch q) in
  out = MessageQueue.messages q ++ batch ∧ MessageQueue.messages q' = [].
Proof.
  intros H.
  pose proof (bf_push_all_contents batch q H) as Hc.
  destruct (bf_drain_contents (length (MessageQueue.messages q) + length batch)
    (bf_push_all batch q)) as [D1 D2].
  rewrite Hc in D1, D2. destruct (bf_drain _ _) as [out q']. simpl in *.
  rewrite <- length_app in *. by rewrite take_ge in D1 by lia; rewrite drop_ge in D2 by lia.
Qed.

Definition sample_message (n : N) : MessageEnvelope.t :=
  MessageEnvelope.new (MessageId.mk n) console_service_id "ping" (SchemaVersion.new 1 0)
    (MessagePayload.mk []).

Lemma queue_push_drain_roundtrip_witness :
  let q := MessageQueue.with_capacity 2 in
  let '(out, q') := bf_drain 2 (bf_push_all [sample_message 1; sample_message 2] q) in
  out = [sample_message 1; sample_message 2] ∧ MessageQueue.messages q' = [].
Proof.
  apply (queue_push_drain_roundtrip (MessageQueue.with_capacity 2)
    [sample_message 1; sample_message 2]). simpl. lia.
Defined.

(** Advancing the timer never moves it backwards, adds exactly the requested
    ticks, and panics exactly when the tick counter would overflow 64 bits. *)
Theorem timer_advance_spec d delta :
  match SimTimerDevice.advance_ticks delta d with
  | Return d' => SimTimerDevice.ticks d' = SimTimerDevice.ticks d + delta ∧
                 SimTimerDevice.ticks d + delta ≤ u64_max
  | Panic => u64_max < SimTimerDevice.ticks d + delta
  | Diverge => False
  end.
Proof.
  unfold SimTimerDevice.advance_ticks, checked_add.
  destruct (N.leb_spec (SimTimerDevice.ticks d + delta) u64_max); simpl; [split|]; done.
Qed.

End QueueSpec.
