(* ===== verification/AuditLogs.v ===== *)
(** * Audit logs of the kernel

    [sim_kernel/src/capability_audit.rs], [sim_kernel/src/resource_audit.rs] and
    [sim_kernel/src/policy_audit.rs]: append-only lists of timestamped events. *)

From S2P Require Import Prelude CoreTypes Policy.
Open Scope string_scope.
Open Scope list_scope.
Open Scope N_scope.

(** ** Capability events *)
Module CapabilityAuditEvent.
(* sim_kernel/src/capability_audit.rs:40-47 CapabilityAuditEvent *)
Record t := mk { timestamp : Instant.t; event : CapabilityEvent.t }.
End CapabilityAuditEvent.

Module CapabilityAuditLog.
(* sim_kernel/src/capability_audit.rs:49-57 CapabilityAuditLog *)
Record t := mk { events : list CapabilityAuditEvent.t }.
#[global] Instance rebuild_t : Rebuild t := λ l, mk (events l).
(* sim_kernel/src/capability_audit.rs:60-63 CapabilityAuditLog::new *)
Definition new : t := mk [].
(* sim_kernel/src/capability_audit.rs:65-68 CapabilityAuditLog::record_event *)
Definition record_event (timestamp : Instant.t) (event : CapabilityEvent.t) (l : t) : t :=
  l <| events ::= λ es, es ++ [CapabilityAuditEvent.mk timestamp event] |>.
(** The capability an event is about. *)
(* sim_kernel/src/capability_audit.rs:79-89 CapabilityAuditLog::get_events_for_cap *)
Definition event_cap (e : CapabilityEvent.t) : N :=
  match e with
  | CapabilityEvent.Granted id _ _ _ => id
  | CapabilityEvent.Delegated id _ _ _ => id
  | CapabilityEvent.CrossDomainDelegation id _ _ _ _ => id
  | CapabilityEvent.Cloned id _ _ _ => id
  | CapabilityEvent.Dropped id _ _ => id
  | CapabilityEvent.InvalidUseAttempt id _ _ => id
  | CapabilityEvent.Invalidated id _ _ => id
  | CapabilityEvent.Revoked id _ _ _ => id
  | CapabilityEvent.LeaseExpired id _ _ _ => id
  end.
(* sim_kernel/src/capability_audit.rs:75-91 CapabilityAuditLog::get_events_for_cap *)
Definition get_events_for_cap (cap_id : N) (l : t) : list CapabilityAuditEvent.t :=
  filter (λ e, event_cap (CapabilityAuditEvent.event e) = cap_id) (events l).
(* sim_kernel/src/capability_audit.rs:93-99 CapabilityAuditLog::count_events *)
Definition count_events (P : CapabilityEvent.t → bool) (l : t) : N :=
  len (filter (λ e, P (CapabilityAuditEvent.event e) = true) (events l)).
(* sim_kernel/src/capability_audit.rs:101-107 CapabilityAuditLog::has_event *)
Definition has_event (P : CapabilityEvent.t → bool) (l : t) : bool :=
  existsb (λ e, P (CapabilityAuditEvent.event e)) (events l).
(* sim_kernel/src/capability_audit.rs:109-112 CapabilityAuditLog::clear *)
Definition clear (l : t) : t := l <| events := [] |>.
End CapabilityAuditLog.

(** ** Resource events *)
Module MessageOperation.
(* sim_kernel/src/resource_audit.rs:76-81 MessageOperation *)
Inductive t := Send | Receive.
Definition debug (o : t) : string := match o with Send => "Send" | Receive => "Receive" end.
End MessageOperation.

Module PacketOperation.
(* sim_kernel/src/resource_audit.rs:83-88 PacketOperation *)
Inductive t := Send | Receive.
Definition debug (o : t) : string := match o with Send => "Send" | Receive => "Receive" end.
End PacketOperation.

Module StorageOperation.
(* sim_kernel/src/resource_audit.rs:90-96 StorageOperation *)
Inductive t := Read | Write | Commit.
Definition debug (o : t) : string :=
  match o with Read => "Read" | Write => "Write" | Commit => "Commit" end.
End StorageOperation.

Module ResourceEvent.
(* sim_kernel/src/resource_audit.rs:17-74 ResourceEvent *)
Inductive t :=
| MessageConsumed (execution_id : ExecutionId.t) (operation : MessageOperation.t) (before after : N)
| PacketConsumed (execution_id : ExecutionId.t) (operation : PacketOperation.t) (before after : N)
| CpuConsumed (execution_id : ExecutionId.t) (amount before after : N)
| StorageOpConsumed (execution_id : ExecutionId.t) (operation : StorageOperation.t)
    (before after : N)
| PipelineStageConsumed (execution_id : ExecutionId.t) (stage_name : string) (before after : N)
| BudgetExhausted (execution_id : ExecutionId.t) (resource_type : string)
    (limit attempted_usage : N) (operation : string)
| CancelledDueToExhaustion (execution_id : ExecutionId.t) (resource_type : string).
End ResourceEvent.

Module ResourceAuditEntry.
(* sim_kernel/src/resource_audit.rs:98-103 ResourceAuditEntry *)
Record t := mk { timestamp : Instant.t; event : ResourceEvent.t }.
End ResourceAuditEntry.

Module ResourceAuditLog.
(* sim_kernel/src/resource_audit.rs:105-110 ResourceAuditLog *)
Record t := mk { entries : list ResourceAuditEntry.t }.
#[global] Instance rebuild_t : Rebuild t := λ l, mk (entries l).
(* sim_kernel/src/resource_audit.rs:113-118 ResourceAuditLog::new *)
Definition new : t := mk [].
(* sim_kernel/src/resource_audit.rs:120-123 ResourceAuditLog::record_event *)
Definition record_event (timestamp : Instant.t) (event : ResourceEvent.t) (l : t) : t :=
  l <| entries ::= λ es, es ++ [ResourceAuditEntry.mk timestamp event] |>.
(* sim_kernel/src/resource_audit.rs:163-184 ResourceAuditLog::entries_for_execution *)
Definition event_execution (e : ResourceEvent.t) : ExecutionId.t :=
  match e with
  | ResourceEvent.MessageConsumed eid _ _ _
  | ResourceEvent.PacketConsumed eid _ _ _
  | ResourceEvent.CpuConsumed eid _ _ _
  | ResourceEvent.StorageOpConsumed eid _ _ _
  | ResourceEvent.PipelineStageConsumed eid _ _ _
  | ResourceEvent.BudgetExhausted eid _ _ _ _
  | ResourceEvent.CancelledDueToExhaustion eid _ => eid
  end.
(* sim_kernel/src/resource_audit.rs:159-187 ResourceAuditLog::entries_for_execution *)
Definition entries_for_execution (eid : ExecutionId.t) (l : t) : list ResourceAuditEntry.t :=
  filter (λ x, event_execution (ResourceAuditEntry.event x) = eid) (entries l).
(* sim_kernel/src/resource_audit.rs:189-192 ResourceAuditLog::clear *)
Definition clear (l : t) : t := l <| entries := [] |>.
End ResourceAuditLog.

(** ** Policy decisions *)
Module PolicyAuditEvent.
(* sim_kernel/src/policy_audit.rs:10-23 PolicyAuditEvent *)
Record t := mk {
  timestamp : Instant.t;
  event : PolicyEvent.t;
  policy_name : string;
  decision : PolicyDecision.t;
  context_summary : string
}.
End PolicyAuditEvent.

Module PolicyAuditLog.
(* sim_kernel/src/policy_audit.rs:25-32 PolicyAuditLog *)
Record t := mk { events : list PolicyAuditEvent.t }.
#[global] Instance rebuild_t : Rebuild t := λ l, mk (events l).
(* sim_kernel/src/policy_audit.rs:35-38 PolicyAuditLog::new *)
Definition new : t := mk [].
(* sim_kernel/src/policy_audit.rs:40-56 PolicyAuditLog::record_decision *)
Definition record_decision (timestamp : Instant.t) (event : PolicyEvent.t) (policy_name : string)
    (decision : PolicyDecision.t) (context_summary : string) (l : t) : t :=
  l <| events ::= λ es,
        es ++ [PolicyAuditEvent.mk timestamp event policy_name decision context_summary] |>.
(* sim_kernel/src/policy_audit.rs:63-66 PolicyAuditLog::clear *)
Definition clear (l : t) : t := l <| events := [] |>.
End PolicyAuditLog.
