(* ===== verification/Faults.v ===== *)
(** * Fault injection ([sim_kernel/src/fault_injection.rs])

    The deterministic faults a test plan injects into message delivery, and that
    reordering loses and invents no message. *)

From S2P Require Import Prelude CoreTypes Ipc.
Open Scope N_scope.

Module MessageFault.
(* sim_kernel/src/fault_injection.rs:28-46 MessageFault *)
Inductive t :=
| DropNext (count : N)
| DropNextOnChannel (channel : ChannelId.t) (count : N)
| DropMatching (action : string)
| Delay (duration : Duration.t)
| ReorderWindow (index offset : N).
End MessageFault.

Module LifecycleFault.
(* sim_kernel/src/fault_injection.rs:48-59 LifecycleFault *)
Inductive t := CrashOnSend | CrashOnRecv | CrashAfterMessages (count : N).
End LifecycleFault.

Module FaultPlan.
(* sim_kernel/src/fault_injection.rs:61-72 FaultPlan *)
Record t := mk {
  message_faults : list MessageFault.t;
  lifecycle_faults : list LifecycleFault.t
}.
#[global] Instance rebuild_t : Rebuild t := λ p, mk (message_faults p) (lifecycle_faults p).
(* sim_kernel/src/fault_injection.rs:75-81 FaultPlan::new *)
Definition new : t := mk [] [].
(* sim_kernel/src/fault_injection.rs:83-87 FaultPlan::with_message_fault *)
Definition with_message_fault (f : MessageFault.t) (p : t) : t :=
  p <| message_faults ::= λ l, l ++ [f] |>.
(* sim_kernel/src/fault_injection.rs:89-93 FaultPlan::with_lifecycle_fault *)
Definition with_lifecycle_fault (f : LifecycleFault.t) (p : t) : t :=
  p <| lifecycle_faults ::= λ l, l ++ [f] |>.
End FaultPlan.

Module FaultInjector.
(* sim_kernel/src/fault_injection.rs:106-123 FaultInjector *)
Record t := mk {
  plan : FaultPlan.t;
  messages_processed : N;
  drop_next_count : N;
  drop_next_on_channel : gmap ChannelId.t N;
  delay_next_count : N;
  delay_duration : option Duration.t;
  crash_after_messages : option N;
  crash_on_send : bool;
  crash_on_recv : bool
}.
#[global] Instance rebuild_t : Rebuild t := λ i,
  mk (plan i) (messages_processed i) (drop_next_count i) (drop_next_on_channel i)
     (delay_next_count i) (delay_duration i) (crash_after_messages i) (crash_on_send i)
     (crash_on_recv i).

(* sim_kernel/src/fault_injection.rs:141-160 FaultInjector::new *)
Definition init_message_fault (i : t) (f : MessageFault.t) : t :=
  match f with
  | MessageFault.DropNext count => i <| drop_next_count := count |>
  | MessageFault.DropNextOnChannel channel count =>
      i <| drop_next_on_channel ::= <[channel := count]> |>
  | MessageFault.Delay duration =>
      i <| delay_next_count := 1 |> <| delay_duration := Some duration |>
  | MessageFault.DropMatching _ => i
  | MessageFault.ReorderWindow _ _ => i
  end.
(* sim_kernel/src/fault_injection.rs:162-174 FaultInjector::new *)
Definition init_lifecycle_fault (i : t) (f : LifecycleFault.t) : t :=
  match f with
  | LifecycleFault.CrashOnSend => i <| crash_on_send := true |>
  | LifecycleFault.CrashOnRecv => i <| crash_on_recv := true |>
  | LifecycleFault.CrashAfterMessages count => i <| crash_after_messages := Some count |>
  end.
(* sim_kernel/src/fault_injection.rs:126-177 FaultInjector::new *)
Definition new (p : FaultPlan.t) : t :=
  let injector := mk p 0 0 ∅ 0 None None false false in
  let injector := foldl init_message_fault injector (FaultPlan.message_faults p) in
  foldl init_lifecycle_fault injector (FaultPlan.lifecycle_faults p).

Definition matches_action (action : string) (f : MessageFault.t) : bool :=
  match f with MessageFault.DropMatching a => bool_decide (action = a) | _ => false end.
(** The last check of [should_drop_message]: the plan's [DropMatching] faults. *)
(* sim_kernel/src/fault_injection.rs:197-206 FaultInjector::should_drop_message *)
Definition drops_action (message : MessageEnvelope.t) (i : t) : bool :=
  existsb (matches_action (MessageEnvelope.action message))
    (FaultPlan.message_faults (plan i)).
(* sim_kernel/src/fault_injection.rs:179-207 FaultInjector::should_drop_message *)
Definition should_drop_message (channel : ChannelId.t) (message : MessageEnvelope.t) (i : t)
    : bool * t :=
  if 0 <? drop_next_count i
  then (true, i <| drop_next_count ::= λ n, n - 1 |>)
  else
    match drop_next_on_channel i !! channel with
    | Some count =>
        if 0 <? count
        then (true, i <| drop_next_on_channel ::= <[channel := count - 1]> |>)
        else (drops_action message i, i)
    | None => (drops_action message i, i)
    end.

(* sim_kernel/src/fault_injection.rs:209-217 FaultInjector::get_message_delay *)
Definition get_message_delay (i : t) : option Duration.t * t :=
  if 0 <? delay_next_count i
  then (delay_duration i, i <| delay_next_count ::= λ n, n - 1 |>)
  else (None, i).

(** One fault of [apply_reordering]; the two bounds are checked left to right, so
    the sum is computed only for an index in range. *)
(* sim_kernel/src/fault_injection.rs:222-226 FaultInjector::apply_reordering *)
Definition reorder_one (messages : list MessageEnvelope.t) (f : MessageFault.t)
    : outcome (list MessageEnvelope.t) :=
  match f with
  | MessageFault.ReorderWindow index offset =>
      if index <? len messages then
        j ← add_u64 index offset;
        Return (if j <? len messages
                then vec_swap (N.to_nat index) (N.to_nat j) messages else messages)
      else Return messages
  | _ => Return messages
  end.
(* sim_kernel/src/fault_injection.rs:219-228 FaultInjector::apply_reordering *)
Definition apply_reordering (messages : list MessageEnvelope.t) (i : t)
    : outcome (list MessageEnvelope.t) :=
  fold_outcome reorder_one (FaultPlan.message_faults (plan i)) messages.

(* sim_kernel/src/fault_injection.rs:230-233 FaultInjector::should_crash_on_send *)
Definition should_crash_on_send (i : t) : bool := crash_on_send i.
(* sim_kernel/src/fault_injection.rs:235-238 FaultInjector::should_crash_on_recv *)
Definition should_crash_on_recv (i : t) : bool := crash_on_recv i.
(* sim_kernel/src/fault_injection.rs:240-251 FaultInjector::record_message_processed *)
Definition record_message_processed (i : t) : outcome t :=
  n ← add_u64 (messages_processed i) 1;
  let i := i <| messages_processed := n |> in
  match crash_after_messages i with
  | Some crash_after =>
      Return (if crash_after <=? messages_processed i then i <| crash_on_recv := true |> else i)
  | None => Return i
  end.
End FaultInjector.

(** ** Properties *)
Module FaultSpec.

Lemma vec_swap_Permutation {A} (i j : nat) (l : list A) : vec_swap i j l ≡ₚ l.
Proof.
  unfold vec_swap.
  destruct (l !! i) as [x|] eqn:Hi; [|done]. destruct (l !! j) as [y|] eqn:Hj; [|done].
  by apply Permutation_insert_swap.
Qed.

Lemma reorder_one_Permutation ms f ms' :
  FaultInjector.reorder_one ms f = Return ms' → ms' ≡ₚ ms.
Proof.
  unfold FaultInjector.reorder_one. destruct f; try (intros; simplify_eq; done).
  destruct (index <? len ms); [|naive_solver].
  destruct (add_u64 index offset); simpl; [|done..]. intros [= <-].
  destruct (a <? len ms); [apply vec_swap_Permutation|done].
Qed.

(** Reordering faults only reorder: whatever the plan, the messages left in a
    queue after [apply_reordering] are exactly those that were in it. *)
Theorem apply_reordering_permutes injector messages messages' :
  FaultInjector.apply_reordering messages injector = Return messages' →
  messages' ≡ₚ messages.
Proof.
  apply (fold_outcome_ind (λ ms, ms ≡ₚ messages)); [done|].
  intros ms f ms' _ Hms ->%reorder_one_Permutation. done.
Qed.

Definition swap_plan : FaultPlan.t :=
  FaultPlan.with_message_fault (MessageFault.ReorderWindow 0 1) FaultPlan.new.
Definition sample_message (n : N) : MessageEnvelope.t :=
  MessageEnvelope.new (MessageId.mk n) console_service_id "ping"%string (SchemaVersion.new 1 0)
    (MessagePayload.mk []).

Lemma apply_reordering_permutes_witness :
  [sample_message 2; sample_message 1] ≡ₚ [sample_message 1; sample_message 2].
Proof.
  apply (apply_reordering_permutes (FaultInjector.new swap_plan)). reflexivity.
Defined.

End FaultSpec.
