(* ===== verification/Sched.v ===== *)
(** * The single-core scheduler ([sim_kernel/src/scheduler.rs])

    Task states, the run queue, round-robin and earliest-deadline-first dispatch,
    real-time admission control and deadline bookkeeping.  The theorems about it
    are in [SchedProps.v]. *)

From S2P Require Import Prelude CoreTypes.
Open Scope N_scope.

Module TaskState.
(* sim_kernel/src/scheduler.rs:31-43 TaskState *)
Inductive t := Runnable | Blocked (wake_tick : N) | Exited | Cancelled.
#[global] Instance eq_dec : EqDecision t.
Proof. solve_decision. Defined.
End TaskState.

Module RealTimePolicy.
(* sim_kernel/src/scheduler.rs:66-71 RealTimePolicy *)
Inductive t := None | EarliestDeadlineFirst.
#[global] Instance eq_dec : EqDecision t.
Proof. solve_decision. Defined.
End RealTimePolicy.

Module SchedulerConfig.
(* sim_kernel/src/scheduler.rs:45-54 SchedulerConfig *)
Record t := mk {
  quantum_ticks : N;
  max_steps_per_tick : option N;
  realtime_policy : RealTimePolicy.t
}.
(* sim_kernel/src/scheduler.rs:56-64 SchedulerConfig::default *)
Definition default : t := mk 10 (Some 1000) RealTimePolicy.None.
End SchedulerConfig.

Module RealTimeParams.
(* sim_kernel/src/scheduler.rs:73-78 RealTimeParams *)
Record t := mk { period_ticks : N; budget_ticks : N }.
End RealTimeParams.

Module RealTimeTask.
(* sim_kernel/src/scheduler.rs:80-87 RealTimeTask *)
Record t := mk {
  params : RealTimeParams.t;
  next_deadline : N;
  remaining_budget : N;
  deadline_misses : N
}.
#[global] Instance rebuild_t : Rebuild t := λ r,
  mk (params r) (next_deadline r) (remaining_budget r) (deadline_misses r).
(* sim_kernel/src/scheduler.rs:90-97 RealTimeTask::new *)
Definition new (p : RealTimeParams.t) (current_ticks : N) : t :=
  mk p (saturating_add current_ticks (RealTimeParams.period_ticks p))
     (RealTimeParams.budget_ticks p) 0.
(* sim_kernel/src/scheduler.rs:99-102 RealTimeTask::reset_for_next_period *)
Definition reset_for_next_period (r : t) : t :=
  r <| remaining_budget := RealTimeParams.budget_ticks (params r) |>
    <| next_deadline ::= λ d, saturating_add d (RealTimeParams.period_ticks (params r)) |>.
End RealTimeTask.

Module SchedulerError.
(* sim_kernel/src/scheduler.rs:105-110 SchedulerError *)
Inductive t := TaskNotFound (id : TaskId.t) | AdmissionControlFailed.
End SchedulerError.

Module PreemptionReason.
(* sim_kernel/src/scheduler.rs:140-151 PreemptionReason *)
Inductive t := QuantumExpired | Yielded | Blocked | BudgetExhausted.
End PreemptionReason.

Module SchedExitReason.
(* sim_kernel/src/scheduler.rs:153-162 ExitReason *)
Inductive t := Normal | ResourceExhaustion | Failed.
End SchedExitReason.

Module ScheduleEvent.
(* sim_kernel/src/scheduler.rs:112-138 ScheduleEvent *)
Inductive t :=
| TaskSelected (task_id : TaskId.t) (timestamp_ticks : N)
| TaskPreempted (task_id : TaskId.t) (reason : PreemptionReason.t) (timestamp_ticks : N)
| TaskExited (task_id : TaskId.t) (reason : SchedExitReason.t) (timestamp_ticks : N)
| DeadlineMissed (task_id : TaskId.t) (deadline_tick timestamp_ticks : N).
End ScheduleEvent.

Module SchedTaskInfo.
(* sim_kernel/src/scheduler.rs:164-171 TaskInfo *)
Record t := mk {
  state : TaskState.t;
  ticks_in_quantum : N;
  realtime : option RealTimeTask.t
}.
#[global] Instance rebuild_t : Rebuild t := λ i, mk (state i) (ticks_in_quantum i) (realtime i).
End SchedTaskInfo.

(** ** The run queue: a [VecDeque] of task identifiers *)
Module RunQueue.
Local Notation t := (list TaskId.t).
(* sim_kernel/src/scheduler.rs:189-191 RunQueue::enqueue *)
Definition enqueue (id : TaskId.t) (q : t) : t := q ++ [id].
(* sim_kernel/src/scheduler.rs:193-195 RunQueue::dequeue *)
Definition dequeue (q : t) : option TaskId.t * t :=
  match q with [] => (None, []) | id :: q' => (Some id, q') end.
(** The scan for the smallest deadline: [best] is the best index and deadline so
    far, and the comparison is strict. *)
(* sim_kernel/src/scheduler.rs:201-211 RunQueue::dequeue_earliest_deadline *)
Fixpoint scan_deadlines (deadline_of : TaskId.t → option N) (q : list TaskId.t) (index : nat)
    (best_index : option nat) (best_deadline : N) : option nat :=
  match q with
  | [] => best_index
  | id :: q' =>
      match deadline_of id with
      | Some deadline =>
          if deadline <? best_deadline
          then scan_deadlines deadline_of q' (S index) (Some index) deadline
          else scan_deadlines deadline_of q' (S index) best_index best_deadline
      | None => scan_deadlines deadline_of q' (S index) best_index best_deadline
      end
  end.
(* sim_kernel/src/scheduler.rs:197-218 RunQueue::dequeue_earliest_deadline *)
Definition dequeue_earliest_deadline (deadline_of : TaskId.t → option N) (q : t)
    : option TaskId.t * t :=
  match scan_deadlines deadline_of q 0 None u64_max with
  | Some index => (q !! index, delete index q)
  | None => dequeue q
  end.
(* sim_kernel/src/scheduler.rs:228-230 RunQueue::remove *)
Definition remove (id : TaskId.t) (q : t) : t := filter (λ x, x ≠ id) q.
End RunQueue.

(** ** The scheduler *)
Module Scheduler.
(* sim_kernel/src/scheduler.rs:233-244 Scheduler *)
Record t := mk {
  config : SchedulerConfig.t;
  run_queue : list TaskId.t;
  tasks : gmap TaskId.t SchedTaskInfo.t;
  current_task : option TaskId.t;
  current_ticks : N;
  audit_log : list ScheduleEvent.t
}.
#[global] Instance rebuild_t : Rebuild t := λ s,
  mk (config s) (run_queue s) (tasks s) (current_task s) (current_ticks s) (audit_log s).

(* sim_kernel/src/scheduler.rs:252-262 Scheduler::with_config *)
Definition with_config (c : SchedulerConfig.t) : t := mk c [] ∅ None 0 [].
(* sim_kernel/src/scheduler.rs:247-250 Scheduler::new *)
Definition new : t := with_config SchedulerConfig.default.

Definition push_event (e : ScheduleEvent.t) (s : t) : t := s <| audit_log ::= λ l, l ++ [e] |>.

(* sim_kernel/src/scheduler.rs:587-591 Scheduler::task_deadline *)
Definition task_deadline (s : t) (id : TaskId.t) : option N :=
  info ← tasks s !! id;
  rt ← SchedTaskInfo.realtime info;
  Some (RealTimeTask.next_deadline rt).

(** The position before the first queued task with a later deadline. *)
(* sim_kernel/src/scheduler.rs:598-606 Scheduler::enqueue_runnable *)
Fixpoint insert_position (deadline_of : TaskId.t → option N) (deadline : N)
    (q : list TaskId.t) : nat :=
  match q with
  | [] => 0
  | existing :: q' =>
      match deadline_of existing with
      | Some existing_deadline =>
          if deadline <? existing_deadline then 0%nat
          else S (insert_position deadline_of deadline q')
      | None => S (insert_position deadline_of deadline q')
      end
  end.
(* sim_kernel/src/scheduler.rs:593-613 Scheduler::enqueue_runnable *)
Definition enqueue_runnable (id : TaskId.t) (s : t) : t :=
  match SchedulerConfig.realtime_policy (config s) with
  | RealTimePolicy.None => s <| run_queue ::= RunQueue.enqueue id |>
  | RealTimePolicy.EarliestDeadlineFirst =>
      match task_deadline s id with
      | Some deadline =>
          let insert_pos := insert_position (task_deadline s) deadline (run_queue s) in
          s <| run_queue ::= vec_insert insert_pos id |>
      | None => s <| run_queue ::= RunQueue.enqueue id |>
      end
  end.

(* sim_kernel/src/scheduler.rs:264-275 Scheduler::enqueue *)
Definition enqueue (id : TaskId.t) (s : t) : t :=
  let task_info := SchedTaskInfo.mk TaskState.Runnable 0 None in
  enqueue_runnable id (s <| tasks ::= <[id := task_info]> |>).

(* sim_kernel/src/scheduler.rs:281-297 Scheduler::dequeue_next *)
Definition pick_next (s : t) : option TaskId.t * list TaskId.t :=
  match SchedulerConfig.realtime_policy (config s) with
  | RealTimePolicy.None => RunQueue.dequeue (run_queue s)
  | RealTimePolicy.EarliestDeadlineFirst =>
      let deadlines : gmap TaskId.t N :=
        omap (λ info, RealTimeTask.next_deadline <$> SchedTaskInfo.realtime info) (tasks s) in
      RunQueue.dequeue_earliest_deadline (λ id, deadlines !! id) (run_queue s)
  end.
(* sim_kernel/src/scheduler.rs:277-317 Scheduler::dequeue_next *)
Definition dequeue_next (s : t) : option TaskId.t * t :=
  let '(next, q) := pick_next s in
  let s := s <| run_queue := q |> in
  match next with
  | Some id =>
      let s := s <| tasks ::= alter (λ i, i <| SchedTaskInfo.ticks_in_quantum := 0 |>) id |> in
      let s := s <| current_task := Some id |> in
      (Some id, push_event (ScheduleEvent.TaskSelected id (current_ticks s)) s)
  | None => (None, s <| current_task := None |>)
  end.

(** One task of [refresh_deadlines]: the inner [while] loop.  Each round moves the
    deadline on by one period, so [refresh_fuel] rounds are enough unless the
    deadline saturates at the largest tick without passing the current one, in
    which case the loop does not end. *)
(* sim_kernel/src/scheduler.rs:622-632 Scheduler::refresh_deadlines *)
Fixpoint refresh_loop (fuel : nat) (id : TaskId.t) (now : N) (rt : RealTimeTask.t)
    (log : list ScheduleEvent.t) : outcome (RealTimeTask.t * list ScheduleEvent.t) :=
  match fuel with
  | O => Diverge
  | S fuel =>
      if RealTimeTask.next_deadline rt <=? now then
        if 0 <? RealTimeTask.remaining_budget rt then
          misses ← add_u64 (RealTimeTask.deadline_misses rt) 1;
          refresh_loop fuel id now
            (RealTimeTask.reset_for_next_period
               (rt <| RealTimeTask.deadline_misses := misses |>))
            (log ++ [ScheduleEvent.DeadlineMissed id (RealTimeTask.next_deadline rt) now])
        else refresh_loop fuel id now (RealTimeTask.reset_for_next_period rt) log
      else Return (rt, log)
  end.
Definition refresh_fuel (now : N) (rt : RealTimeTask.t) : nat :=
  S (S (N.to_nat ((now - RealTimeTask.next_deadline rt)
                  / RealTimeParams.period_ticks (RealTimeTask.params rt)))).
(* sim_kernel/src/scheduler.rs:617-634 Scheduler::refresh_deadlines *)
Definition refresh_task (now : N) (id : TaskId.t) (info : SchedTaskInfo.t)
    (log : list ScheduleEvent.t) : outcome (SchedTaskInfo.t * list ScheduleEvent.t) :=
  match SchedTaskInfo.realtime info with
  | Some rt =>
      if RealTimeParams.period_ticks (RealTimeTask.params rt) =? 0 then Return (info, log)
      else
        '(rt', log') ← refresh_loop (refresh_fuel now rt) id now rt log;
        Return (info <| SchedTaskInfo.realtime := Some rt' |>, log')
  | None => Return (info, log)
  end.

Section with_order.
Context `{HashOrder}.

(* sim_kernel/src/scheduler.rs:615-635 Scheduler::refresh_deadlines *)
Definition refresh_deadlines (s : t) : outcome t :=
  fold_outcome (λ s' '(id, info),
      '(info', log) ← refresh_task (current_ticks s) id info (audit_log s');
      Return (s' <| tasks ::= <[id := info']> |> <| audit_log := log |>))
    (hm_iter (tasks s)) s.

(* sim_kernel/src/scheduler.rs:493-504 Scheduler::unblock_task *)
Definition unblock_task (id : TaskId.t) (s : t) : t :=
  match tasks s !! id with
  | Some info =>
      match SchedTaskInfo.state info with
      | TaskState.Blocked _ =>
          let info := info <| SchedTaskInfo.state := TaskState.Runnable |>
                           <| SchedTaskInfo.ticks_in_quantum := 0 |> in
          enqueue_runnable id (s <| tasks ::= <[id := info]> |>)
      | _ => s
      end
  | None => s
  end.

(* sim_kernel/src/scheduler.rs:405-411 Scheduler::wake_ready_tasks *)
Definition ready_to_wake (now : N) (info : SchedTaskInfo.t) : bool :=
  match SchedTaskInfo.state info with
  | TaskState.Blocked wake_tick => wake_tick <=? now
  | _ => false
  end.
(* sim_kernel/src/scheduler.rs:396-418 Scheduler::wake_ready_tasks *)
Definition wake_ready_tasks (s : t) : t :=
  let tasks_to_wake :=
    (filter (λ kv, ready_to_wake (current_ticks s) kv.2 = true) (hm_iter (tasks s))).*1 in
  foldl (λ s id, unblock_task id s) s tasks_to_wake.

(* sim_kernel/src/scheduler.rs:326-335 Scheduler::on_tick_advanced *)
Definition charge_current (delta_ticks : N) (s : t) : outcome t :=
  match current_task s with
  | Some id =>
      match tasks s !! id with
      | Some info =>
          tq ← add_u64 (SchedTaskInfo.ticks_in_quantum info) delta_ticks;
          let info := info <| SchedTaskInfo.ticks_in_quantum := tq |> in
          let info := info <| SchedTaskInfo.realtime ::= fmap (λ rt,
            rt <| RealTimeTask.remaining_budget ::= λ b, saturating_sub b delta_ticks |>) |> in
          Return (s <| tasks ::= <[id := info]> |>)
      | None => Return s
      end
  | None => Return s
  end.
(* sim_kernel/src/scheduler.rs:319-341 Scheduler::on_tick_advanced *)
Definition on_tick_advanced (delta_ticks : N) (s : t) : outcome t :=
  now ← add_u64 (current_ticks s) delta_ticks;
  s ← charge_current delta_ticks (s <| current_ticks := now |>);
  s ← refresh_deadlines s;
  Return (wake_ready_tasks s).

(** Utilization in parts per million.  The sums are [u128] and the terms are below
    [2^84], so they cannot overflow; the result is cut to 64 bits. *)
(* sim_kernel/src/scheduler.rs:387-389 Scheduler::real_time_utilization_ppm *)
Definition share_ppm (p : RealTimeParams.t) : N :=
  if RealTimeParams.period_ticks p =? 0 then 0
  else RealTimeParams.budget_ticks p * 1000000 / RealTimeParams.period_ticks p.
(* sim_kernel/src/scheduler.rs:385-391 Scheduler::real_time_utilization_ppm *)
Definition info_share (info : SchedTaskInfo.t) : N :=
  match SchedTaskInfo.realtime info with
  | Some rt => share_ppm (RealTimeTask.params rt)
  | None => 0
  end.
(* sim_kernel/src/scheduler.rs:382-394 Scheduler::real_time_utilization_ppm *)
Definition real_time_utilization_ppm (s : t) : N :=
  sumN (info_share <$> hm_values (tasks s)) mod 2 ^ 64.
(* sim_kernel/src/scheduler.rs:637-660 Scheduler::utilization_ppm_with *)
Definition utilization_ppm_with (id : TaskId.t) (p : RealTimeParams.t) (s : t) : N :=
  sumN ((λ '(i, info), if decide (i = id) then share_ppm p else info_share info)
          <$> hm_iter (tasks s)) mod 2 ^ 64.

(* sim_kernel/src/scheduler.rs:343-373 Scheduler::set_real_time_params *)
Definition set_real_time_params (id : TaskId.t) (p : RealTimeParams.t) (s : t)
    : result unit SchedulerError.t * t :=
  if (RealTimeParams.period_ticks p =? 0) || (RealTimeParams.budget_ticks p =? 0)
     || (RealTimeParams.period_ticks p <? RealTimeParams.budget_ticks p)
  then (Err SchedulerError.AdmissionControlFailed, s)
  else if 1000000 <? utilization_ppm_with id p s
  then (Err SchedulerError.AdmissionControlFailed, s)
  else
    match tasks s !! id with
    | None => (Err (SchedulerError.TaskNotFound id), s)
    | Some info =>
        let info := info <| SchedTaskInfo.realtime :=
                              Some (RealTimeTask.new p (current_ticks s)) |> in
        let s := s <| tasks ::= <[id := info]> |> in
        if bool_decide (SchedTaskInfo.state info = TaskState.Runnable)
           && bool_decide (current_task s ≠ Some id)
        then (Ok tt, enqueue_runnable id (s <| run_queue ::= RunQueue.remove id |>))
        else (Ok tt, s)
    end.
End with_order.

(* sim_kernel/src/scheduler.rs:420-434 Scheduler::should_preempt *)
Definition should_preempt (id : TaskId.t) (s : t) : bool :=
  match tasks s !! id with
  | Some info =>
      match SchedTaskInfo.realtime info with
      | Some rt =>
          if RealTimeTask.remaining_budget rt =? 0 then true
          else SchedulerConfig.quantum_ticks (config s) <=? SchedTaskInfo.ticks_in_quantum info
      | None => SchedulerConfig.quantum_ticks (config s) <=? SchedTaskInfo.ticks_in_quantum info
      end
  | None => false
  end.

(** Whether a real-time task has used up its budget for the period. *)
Definition budget_spent (info : SchedTaskInfo.t) : option RealTimeTask.t :=
  match SchedTaskInfo.realtime info with
  | Some rt => if RealTimeTask.remaining_budget rt =? 0 then Some rt else None
  | None => None
  end.
(* sim_kernel/src/scheduler.rs:436-474 Scheduler::preempt_current *)
Definition preempt_current (s : t) : bool * t :=
  match current_task s with
  | None => (false, s)
  | Some id =>
      let s := s <| current_task := None |> in
      match tasks s !! id with
      | None => (false, s)
      | Some info =>
          if bool_decide (SchedTaskInfo.state info = TaskState.Runnable) then
            match budget_spent info with
            | Some rt =>
                let info := info
                  <| SchedTaskInfo.state := TaskState.Blocked (RealTimeTask.next_deadline rt) |>
                  <| SchedTaskInfo.ticks_in_quantum := 0 |> in
                let s := s <| tasks ::= <[id := info]> |> in
                (true, push_event (ScheduleEvent.TaskPreempted id
                         PreemptionReason.BudgetExhausted (current_ticks s)) s)
            | None =>
                let info := info <| SchedTaskInfo.ticks_in_quantum := 0 |> in
                let s := enqueue_runnable id (s <| tasks ::= <[id := info]> |>) in
                (true, push_event (ScheduleEvent.TaskPreempted id
                         PreemptionReason.QuantumExpired (current_ticks s)) s)
            end
          else (false, s)
      end
  end.

(** The part that [block_task], [exit_task] and [cancel_task] share. *)
(* sim_kernel/src/scheduler.rs:513-518 Scheduler::exit_task *)
Definition leave_queue (id : TaskId.t) (s : t) : t :=
  let s := s <| run_queue ::= RunQueue.remove id |> in
  if bool_decide (current_task s = Some id) then s <| current_task := None |> else s.
(* sim_kernel/src/scheduler.rs:510-512 Scheduler::exit_task *)
Definition set_state (st : TaskState.t) (id : TaskId.t) (s : t) : t :=
  s <| tasks ::= alter (λ i, i <| SchedTaskInfo.state := st |>) id |>.

(* sim_kernel/src/scheduler.rs:476-491 Scheduler::block_task *)
Definition block_task (id : TaskId.t) (wake_tick : N) (s : t) : t :=
  leave_queue id
    (s <| tasks ::= alter (λ i, i <| SchedTaskInfo.state := TaskState.Blocked wake_tick |>
                                  <| SchedTaskInfo.ticks_in_quantum := 0 |>) id |>).
(* sim_kernel/src/scheduler.rs:506-526 Scheduler::exit_task *)
Definition exit_task (id : TaskId.t) (s : t) : t :=
  let s := leave_queue id (set_state TaskState.Exited id s) in
  push_event (ScheduleEvent.TaskExited id SchedExitReason.Normal (current_ticks s)) s.
(* sim_kernel/src/scheduler.rs:528-548 Scheduler::cancel_task *)
Definition cancel_task (id : TaskId.t) (s : t) : t :=
  let s := leave_queue id (set_state TaskState.Cancelled id s) in
  push_event (ScheduleEvent.TaskExited id SchedExitReason.ResourceExhaustion (current_ticks s)) s.

(* sim_kernel/src/scheduler.rs:375-380 Scheduler::real_time_params *)
Definition real_time_params (id : TaskId.t) (s : t) : option RealTimeParams.t :=
  info ← tasks s !! id; RealTimeTask.params <$> SchedTaskInfo.realtime info.
(* sim_kernel/src/scheduler.rs:555-558 Scheduler::runnable_count *)
Definition runnable_count (s : t) : N := len (run_queue s).
(* sim_kernel/src/scheduler.rs:560-563 Scheduler::task_state *)
Definition task_state (id : TaskId.t) (s : t) : option TaskState.t :=
  SchedTaskInfo.state <$> tasks s !! id.
(* sim_kernel/src/scheduler.rs:570-573 Scheduler::has_runnable_tasks *)
Definition has_runnable_tasks (s : t) : bool := negb (bool_decide (run_queue s = [])).
(* sim_kernel/src/scheduler.rs:582-585 Scheduler::clear_audit_log *)
Definition clear_audit_log (s : t) : t := s <| audit_log := [] |>.
End Scheduler.
