(* ===== verification/SchedProps.v ===== *)
(** * Properties of the scheduler

    A well-formedness invariant for every sequence of scheduler operations, the
    dispatch order of both policies, that no runnable task is lost, deadline
    bookkeeping, wake-ups and admission control. *)

From S2P Require Import Prelude CoreTypes Sched.
Open Scope N_scope.
Import Scheduler.

Implicit Types (s : Scheduler.t) (id : TaskId.t).

(** ** Operations as a step relation *)
Module SchedOp.
Inductive t :=
| Enqueue (id : TaskId.t)
| Dequeue
| Tick (delta : N)
| SetRealTime (id : TaskId.t) (p : RealTimeParams.t)
| Preempt
| Block (id : TaskId.t) (wake_tick : N)
| Unblock (id : TaskId.t)
| Exit (id : TaskId.t)
| Cancel (id : TaskId.t)
| Wake.

Definition exec `{HashOrder} (o : t) (s : Scheduler.t) : outcome Scheduler.t :=
  match o with
  | Enqueue id => Return (enqueue id s)
  | Dequeue => Return (dequeue_next s).2
  | Tick delta => on_tick_advanced delta s
  | SetRealTime id p => Return (set_real_time_params id p s).2
  | Preempt => Return (preempt_current s).2
  | Block id w => Return (block_task id w s)
  | Unblock id => Return (unblock_task id s)
  | Exit id => Return (exit_task id s)
  | Cancel id => Return (cancel_task id s)
  | Wake => Return (wake_ready_tasks s)
  end.
End SchedOp.

(** What a client may do: [ok o s] says that operation [o] is called in state [s].
    Every step may see the hash maps in a different order. *)
Inductive reach (ok : SchedOp.t → Scheduler.t → Prop) (s : Scheduler.t) : Scheduler.t → Prop :=
| reach_refl : reach ok s s
| reach_step s1 s2 o (HO : HashOrder) :
    reach ok s s1 → ok o s1 → SchedOp.exec o s1 = Return s2 → reach ok s s2.

(** Task identifiers are drawn fresh when a task is enqueued. *)
Definition fresh_ids (o : SchedOp.t) (s : Scheduler.t) : Prop :=
  match o with SchedOp.Enqueue id => tasks s !! id = None | _ => True end.

(** A task is selected only when no task is current. *)
Definition disciplined (o : SchedOp.t) (s : Scheduler.t) : Prop :=
  fresh_ids o s ∧ (o = SchedOp.Dequeue → current_task s = None).

(** Rule induction with an invariant. *)
Lemma reach_invariant (ok : SchedOp.t → Scheduler.t → Prop) (P : Scheduler.t → Prop) s s' :
  P s →
  (∀ s1 s2 o (HO : HashOrder), P s1 → ok o s1 → SchedOp.exec o s1 = Return s2 → P s2) →
  reach ok s s' → P s'.
Proof. intros Hs Hstep. induction 1; eauto. Qed.

(** ** The invariant *)
Record wf (s : Scheduler.t) : Prop := {
  wf_nodup : NoDup (run_queue s);
  wf_queued : ∀ id, id ∈ run_queue s → task_state id s = Some TaskState.Runnable;
  wf_current : ∀ id, current_task s = Some id →
    task_state id s = Some TaskState.Runnable ∧ id ∉ run_queue s
}.

(** Every runnable task is waiting in the queue or running. *)
Definition no_lost_task (s : Scheduler.t) : Prop :=
  ∀ id, task_state id s = Some TaskState.Runnable →
        id ∈ run_queue s ∨ current_task s = Some id.

(** ** Effects of the helpers *)
Lemma enqueue_runnable_eq id s :
  ∃ q, enqueue_runnable id s = s <| run_queue := q |> ∧ q ≡ₚ id :: run_queue s.
Proof.
  unfold enqueue_runnable, RunQueue.enqueue.
  destruct (SchedulerConfig.realtime_policy (config s)); [|destruct (task_deadline s id)];
    (eexists; split; [reflexivity|]).
  - by rewrite Permutation_app_comm.
  - apply vec_insert_Permutation.
  - by rewrite Permutation_app_comm.
Qed.

Lemma scan_deadlines_bound f q i b d j :
  RunQueue.scan_deadlines f q i b d = Some j →
  b = Some j ∨ (i ≤ j < i + length q)%nat.
Proof.
  revert i b d. induction q as [|id q IH]; intros i b d; simpl; [by left|].
  destruct (f id) as [d'|]; [destruct (d' <? d)|];
    intros [?|?]%IH; simplify_eq; auto with lia.
Qed.

Lemma dequeue_edf_Permutation f q id q' :
  RunQueue.dequeue_earliest_deadline f q = (Some id, q') → q ≡ₚ id :: q'.
Proof.
  unfold RunQueue.dequeue_earliest_deadline.
  destruct (RunQueue.scan_deadlines f q 0 None u64_max) as [j|].
  - intros [= Hj <-]. by apply delete_Permutation.
  - destruct q; simpl; naive_solver.
Qed.

Lemma dequeue_edf_None f q q' :
  RunQueue.dequeue_earliest_deadline f q = (None, q') → q = [] ∧ q' = [].
Proof.
  unfold RunQueue.dequeue_earliest_deadline.
  destruct (RunQueue.scan_deadlines f q 0 None u64_max) as [j|] eqn:E.
  - intros [= Hj _]. apply scan_deadlines_bound in E as [?|?]; [done|].
    apply lookup_ge_None in Hj. lia.
  - destruct q; simpl; naive_solver.
Qed.

Lemma pick_next_spec s next q :
  pick_next s = (next, q) →
  match next with
  | Some id => run_queue s ≡ₚ id :: q
  | None => run_queue s = [] ∧ q = []
  end.
Proof.
  unfold pick_next. destruct (SchedulerConfig.realtime_policy _).
  - destruct (run_queue s); simpl; naive_solver.
  - destruct next; [apply dequeue_edf_Permutation|apply dequeue_edf_None].
Qed.

(** The parts of a state that the invariants look at. *)
Definition same_view (s s' : Scheduler.t) : Prop :=
  run_queue s' = run_queue s ∧ current_task s' = current_task s ∧
  ∀ id, task_state id s' = task_state id s.

Lemma same_view_wf s s' : same_view s s' → wf s → wf s'.
Proof. intros (E1&E2&E3) []. split; setoid_rewrite E1 || rewrite E1; [done|..];
  setoid_rewrite E3; [done|]. by rewrite E2. Qed.

Lemma same_view_no_lost s s' : same_view s s' → no_lost_task s → no_lost_task s'.
Proof. intros (E1&E2&E3) Hn id. rewrite E1, E2, E3. apply Hn. Qed.

Lemma task_state_insert id info s i :
  task_state i (s <| tasks ::= <[id := info]> |>) =
  if decide (i = id) then Some (SchedTaskInfo.state info) else task_state i s.
Proof. unfold task_state; simpl. rewrite lookup_insert. repeat case_decide; naive_solver. Qed.

Lemma task_state_alter f id s i :
  task_state i (s <| tasks ::= alter f id |>) =
  if decide (i = id) then (λ x, SchedTaskInfo.state (f x)) <$> tasks s !! i
  else task_state i s.
Proof.
  unfold task_state; simpl. rewrite lookup_alter. repeat case_decide; simplify_eq; try done.
  by destruct (tasks s !! id).
Qed.

(** ** Deadline bookkeeping *)
Section refresh_loop.
Context (id : TaskId.t) (now : N).
Implicit Types (rt : RealTimeTask.t) (log : list ScheduleEvent.t).

Lemma refresh_loop_params fuel rt log rt' log' :
  refresh_loop fuel id now rt log = Return (rt', log') →
  RealTimeTask.params rt' = RealTimeTask.params rt ∧ now < RealTimeTask.next_deadline rt'.
Proof.
  revert rt log. induction fuel as [|fuel IH]; intros rt log; simpl; [done|].
  destruct (N.leb_spec (RealTimeTask.next_deadline rt) now); [|naive_solver].
  destruct (0 <? RealTimeTask.remaining_budget rt).
  - intros (m & _ & Hm)%bind_Return. by apply IH in Hm.
  - intros Hm. by apply IH in Hm.
Qed.

(** Enough fuel: each round moves the deadline by a positive period, or to the
    largest tick, which is past [now], when it saturates. *)
Lemma refresh_loop_terminates k rt log :
  now < u64_max →
  now < RealTimeTask.next_deadline rt
        + N.of_nat k * RealTimeParams.period_ticks (RealTimeTask.params rt) →
  refresh_loop (S k) id now rt log ≠ Diverge.
Proof.
  intros Hnow. revert rt log. induction k as [|k IH]; intros rt log Hk.
  - simpl. destruct (N.leb_spec (RealTimeTask.next_deadline rt) now); [exfalso; lia|done].
  - assert (∀ rt1 log1, RealTimeTask.params rt1 = RealTimeTask.params rt →
        RealTimeTask.next_deadline rt1 = RealTimeTask.next_deadline rt →
        refresh_loop (S k) id now (RealTimeTask.reset_for_next_period rt1) log1 ≠ Diverge) as Hr.
    { intros rt1 log1 E1 E2. apply IH. simpl. rewrite E1, E2.
      unfold saturating_add. destruct (N.min_spec
        (RealTimeTask.next_deadline rt
         + RealTimeParams.period_ticks (RealTimeTask.params rt)) u64_max) as [[_ ->]|[_ ->]];
        lia. }
    remember (S k) as n. simpl.
    destruct (RealTimeTask.next_deadline rt <=? now); [|done].
    destruct (0 <? RealTimeTask.remaining_budget rt); [|by apply Hr].
    unfold add_u64. destruct (checked_add _ _); simpl; [by apply Hr|done].
Qed.

(** At the largest tick the loop has no way out. *)
Lemma refresh_loop_stuck fuel rt log r :
  now = u64_max → RealTimeTask.next_deadline rt ≤ u64_max →
  refresh_loop fuel id now rt log ≠ Return r.
Proof.
  intros ->. revert rt log. induction fuel as [|fuel IH]; intros rt log Hd; simpl; [done|].
  assert (RealTimeTask.next_deadline rt <=? u64_max = true) as -> by by apply N.leb_le.
  assert (∀ d p, saturating_add d p ≤ u64_max) by (intros; unfold saturating_add; lia).
  destruct (0 <? RealTimeTask.remaining_budget rt); [|apply IH; simpl; auto].
  intros (m & _ & Hm)%bind_Return. revert Hm. apply IH; simpl; auto.
Qed.
End refresh_loop.

Lemma refresh_fuel_enough id now rt log :
  now < u64_max → 0 < RealTimeParams.period_ticks (RealTimeTask.params rt) →
  refresh_loop (refresh_fuel now rt) id now rt log ≠ Diverge.
Proof.
  intros Hnow Hp. unfold refresh_fuel. apply refresh_loop_terminates; [done|].
  set (p := RealTimeParams.period_ticks (RealTimeTask.params rt)) in *.
  set (d := RealTimeTask.next_deadline rt).
  rewrite Nat2N.inj_succ, N2Nat.id.
  pose proof (N.mul_succ_div_gt (now - d) p). lia.
Qed.

Lemma refresh_task_spec now id info log info' log' :
  refresh_task now id info log = Return (info', log') →
  SchedTaskInfo.state info' = SchedTaskInfo.state info ∧
  info_share info' = info_share info ∧
  (∀ rt, SchedTaskInfo.realtime info' = Some rt →
         0 < RealTimeParams.period_ticks (RealTimeTask.params rt) →
         now < RealTimeTask.next_deadline rt).
Proof.
  unfold refresh_task, info_share.
  destruct (SchedTaskInfo.realtime info) as [rt|] eqn:Ert.
  2: { intros [= <- <-]. by rewrite Ert. }
  destruct (N.eqb_spec (RealTimeParams.period_ticks (RealTimeTask.params rt)) 0).
  { intros [= <- <-]. rewrite Ert. split_and!; [done..|]. intros rt' [= <-]. lia. }
  intros ([rt' l'] & Hl & [= <- <-])%bind_Return. simpl.
  apply refresh_loop_params in Hl as [-> Hd]. split_and!; [done..|]. naive_solver.
Qed.

Section tick.
Context `{HashOrder}.

(** What [refresh_deadlines] leaves alone, and what it achieves. *)
Record refreshed (s s' : Scheduler.t) : Prop := {
  rf_config : config s' = config s;
  rf_queue : run_queue s' = run_queue s;
  rf_current : current_task s' = current_task s;
  rf_ticks : current_ticks s' = current_ticks s;
  rf_tasks : ∀ id, match tasks s !! id, tasks s' !! id with
    | Some info, Some info' =>
        SchedTaskInfo.state info' = SchedTaskInfo.state info ∧
        info_share info' = info_share info
    | None, None => True
    | _, _ => False
    end;
  rf_deadline : ∀ id info rt, tasks s' !! id = Some info →
    SchedTaskInfo.realtime info = Some rt →
    0 < RealTimeParams.period_ticks (RealTimeTask.params rt) →
    current_ticks s < RealTimeTask.next_deadline rt
}.

(** The loop over the tasks, generalised: [l] holds the tasks still to visit. *)
Lemma refresh_fold_spec s l s1 s' :
  NoDup l.*1 →
  (∀ id info, (id, info) ∈ l → tasks s1 !! id = Some info) →
  fold_outcome (λ s' '(id, info),
      '(info', log) ← refresh_task (current_ticks s) id info (audit_log s');
      Return (s' <| tasks ::= <[id := info']> |> <| audit_log := log |>)) l s1 = Return s' →
  config s' = config s1 ∧ run_queue s' = run_queue s1 ∧ current_task s' = current_task s1 ∧
  current_ticks s' = current_ticks s1 ∧
  (∀ id, id ∉ l.*1 → tasks s' !! id = tasks s1 !! id) ∧
  (∀ id info, (id, info) ∈ l → ∃ info' log log', tasks s' !! id = Some info' ∧
     refresh_task (current_ticks s) id info log = Return (info', log')).
Proof.
  revert s1. induction l as [|[id info] l IH]; intros s1 Hnd Hl; simpl.
  { intros [= <-]. split_and!; try done. intros ? ? []%not_elem_of_nil. }
  apply NoDup_cons in Hnd as [Hnin Hnd].
  intros (s2 & Hs2 & Hrest)%bind_Return.
  apply bind_Return in Hs2 as ([info' log'] & Hr & [= <-]).
  apply IH in Hrest as (E1&E2&E3&E4&E5&E6); [|done|].
  2: { intros i x Hix. simpl. rewrite lookup_insert_ne; [apply Hl; by right|].
       intros <-. apply Hnin. apply list_elem_of_fmap. by exists (id, x). }
  simpl in *. split_and!; try done.
  - intros i [Hi1 Hi2]%not_elem_of_cons. rewrite E5 by done. by rewrite lookup_insert_ne.
  - intros i x [[= -> ->]|Hi]%elem_of_cons; [|by apply E6].
    exists info', (audit_log s1), log'. split; [|done].
    rewrite E5 by done. apply lookup_insert_eq.
Qed.

Lemma refresh_deadlines_spec s s' : refresh_deadlines s = Return s' → refreshed s s'.
Proof.
  intros Hr. unfold refresh_deadlines in Hr.
  apply refresh_fold_spec in Hr as (E1&E2&E3&E4&E5&E6).
  2: apply hm_iter_NoDup_fst. 2: intros id info; apply elem_of_hm_iter.
  assert (∀ id, tasks s' !! id = None ∧ tasks s !! id = None ∨
    ∃ info info' log log', tasks s !! id = Some info ∧ tasks s' !! id = Some info' ∧
      refresh_task (current_ticks s) id info log = Return (info', log')) as Hcase.
  { intros id. destruct (tasks s !! id) as [info|] eqn:E.
    - right. destruct (E6 id info) as (info' & log & log' & ? & ?); [by apply elem_of_hm_iter|].
      eauto 10.
    - left. rewrite E5, E; [done|]. rewrite elem_of_hm_iter_fst, E. by intros [??]. }
  split; try done.
  - intros id. destruct (Hcase id) as [[-> ->]|(info & info' & log & log' & -> & -> & Ht)];
      [done|]. apply refresh_task_spec in Ht. naive_solver.
  - intros id info0 rt Hid Hrt Hp.
    destruct (Hcase id) as [[? ?]|(info & info' & log & log' & ? & ? & Ht)]; [congruence|].
    simplify_eq. apply refresh_task_spec in Ht. naive_solver.
Qed.

Lemma refreshed_same_view s s' : refreshed s s' → same_view s s'.
Proof.
  intros []. split_and!; [done..|]. intros id. unfold task_state.
  specialize (rf_tasks0 id).
  destruct (tasks s !! id), (tasks s' !! id); simpl; [|done..]. f_equal. apply rf_tasks0.
Qed.

Lemma charge_current_spec d s s' :
  charge_current d s = Return s' →
  same_view s s' ∧ config s' = config s ∧ current_ticks s' = current_ticks s ∧
  (∀ id, info_share <$> tasks s' !! id = info_share <$> tasks s !! id).
Proof.
  unfold charge_current. destruct (current_task s) as [id|] eqn:Ec.
  2: { intros [= <-]. by split_and!. }
  destruct (tasks s !! id) as [info|] eqn:Ei.
  2: { intros [= <-]. by split_and!. }
  intros (tq & _ & [= <-])%bind_Return.
  split_and!; try done.
  - split_and!; [done..|]. intros i. rewrite task_state_insert. case_decide; [|done].
    subst. unfold task_state. by rewrite Ei.
  - intros i. simpl. rewrite lookup_insert. case_decide; [|done]. subst. rewrite Ei. simpl.
    f_equal. unfold info_share; simpl. by destruct (SchedTaskInfo.realtime info).
Qed.
End tick.

(** ** Preservation

    [inv L s] is the invariant, with the second part only under [L]: the same
    lemmas serve clients that do and do not keep the selection discipline. *)
Definition inv (L : Prop) (s : Scheduler.t) : Prop := wf s ∧ (L → no_lost_task s).

Lemma same_view_inv L s s' : same_view s s' → inv L s → inv L s'.
Proof.
  intros Hv [Hw Hn]. split; [by eapply same_view_wf|].
  intros HL. by eapply same_view_no_lost; [|apply Hn].
Qed.

Lemma not_queued L id s :
  inv L s → task_state id s ≠ Some TaskState.Runnable →
  id ∉ run_queue s ∧ current_task s ≠ Some id.
Proof. intros [[_ Hq Hc] _] Hs. split; [intros ?%Hq; done|intros [? _]%Hc; done]. Qed.

(** Queueing a task that is runnable and nowhere yet. *)
Lemma enqueue_runnable_inv L id s :
  wf s → task_state id s = Some TaskState.Runnable →
  id ∉ run_queue s → current_task s ≠ Some id →
  (L → ∀ i, i ≠ id → task_state i s = Some TaskState.Runnable →
       i ∈ run_queue s ∨ current_task s = Some i) →
  inv L (enqueue_runnable id s).
Proof.
  intros [Hnd Hq Hc] Hid Hnin Hcur HL.
  destruct (enqueue_runnable_eq id s) as (q & -> & Hperm).
  split; [split|]; simpl.
  - rewrite Hperm. by apply NoDup_cons.
  - intros i. rewrite Hperm. intros [->|Hi]%elem_of_cons; [done|by apply Hq].
  - intros i Hi. destruct (Hc i Hi) as [? ?]. split; [done|].
    rewrite Hperm, elem_of_cons. naive_solver.
  - intros l i Hi. simpl. rewrite Hperm, elem_of_cons.
    destruct (decide (i = id)) as [->|Hne]; [by auto|].
    destruct (HL l i Hne Hi); auto.
Qed.

(** A task that stopped being runnable leaves the queue and the processor. *)
Lemma leave_queue_inv L id s s1 :
  inv L s → run_queue s1 = run_queue s → current_task s1 = current_task s →
  (∀ i, i ≠ id → task_state i s1 = task_state i s) →
  task_state id s1 ≠ Some TaskState.Runnable →
  inv L (leave_queue id s1).
Proof.
  intros [[Hnd Hq Hc] Hn] Eq Ec Est Hid.
  assert (∀ i, i ∈ RunQueue.remove id (run_queue s1) ↔ i ≠ id ∧ i ∈ run_queue s) as Hr.
  { intros i. unfold RunQueue.remove. by rewrite list_elem_of_filter, Eq. }
  assert (NoDup (RunQueue.remove id (run_queue s1))).
  { apply NoDup_filter. by rewrite Eq. }
  unfold leave_queue. simpl. case_bool_decide as Hcid; split; [split|..|split|]; simpl; try done.
  - intros i [Hne Hi]%Hr. specialize (Est i Hne). unfold task_state in *; simpl.
    rewrite Est. by apply Hq.
  - intros l i Hi. simpl. destruct (decide (i = id)) as [->|Hne]; [done|].
    left. apply Hr. split; [done|]. destruct (Hn l i) as [?|E]; [|done|congruence].
    by rewrite <- Est.
  - intros i [Hne Hi]%Hr. specialize (Est i Hne). unfold task_state in *; simpl.
    rewrite Est. by apply Hq.
  - intros i Hi. assert (i ≠ id) as Hne by congruence. rewrite Ec in Hi.
    destruct (Hc i Hi) as [Hst Hnin]. rewrite <- (Est i Hne) in Hst. split; [done|].
    intros [_ ?]%Hr. done.
  - intros l i Hi. simpl. destruct (decide (i = id)) as [->|Hne]; [done|].
    rewrite Hr, Ec. destruct (Hn l i); auto. by rewrite <- Est.
Qed.

Lemma set_state_inv L id st s :
  st ≠ TaskState.Runnable → inv L s → inv L (leave_queue id (set_state st id s)).
Proof.
  intros Hst Hi. eapply leave_queue_inv; [done|reflexivity..| |].
  - intros i Hne. unfold set_state. rewrite task_state_alter. by case_decide.
  - unfold set_state. rewrite task_state_alter, decide_True by done. simpl.
    destruct (tasks s !! id); simpl; congruence.
Qed.

Lemma block_task_inv L id w s : inv L s → inv L (block_task id w s).
Proof.
  intros Hi. eapply leave_queue_inv; [done|reflexivity..| |].
  - intros i Hne. rewrite task_state_alter. by case_decide.
  - rewrite task_state_alter, decide_True by done. by destruct (tasks s !! id).
Qed.

(** Queueing a task together with its new entry in the table. *)
Lemma insert_enqueue_inv L id info s :
  wf s → SchedTaskInfo.state info = TaskState.Runnable →
  id ∉ run_queue s → current_task s ≠ Some id →
  (L → ∀ i, i ≠ id → task_state i s = Some TaskState.Runnable →
       i ∈ run_queue s ∨ current_task s = Some i) →
  inv L (enqueue_runnable id (s <| tasks ::= <[id := info]> |>)).
Proof.
  intros [Hnd Hq Hc] Hst Hnin Hncur HL. apply enqueue_runnable_inv; try done.
  - split; simpl; [done|..].
    + intros i Hi. rewrite task_state_insert, decide_False by (intros ->; done). by apply Hq.
    + intros i Hi. rewrite task_state_insert, decide_False by congruence. by apply Hc.
  - rewrite task_state_insert, decide_True by done. by rewrite Hst.
  - intros l i Hne Hi. rewrite task_state_insert, decide_False in Hi by done. by apply HL.
Qed.

Lemma enqueue_inv L id s : tasks s !! id = None → inv L s → inv L (enqueue id s).
Proof.
  intros Hfresh Hi. destruct (not_queued L id s Hi) as [Hnin Hncur].
  { unfold task_state. by rewrite Hfresh. }
  apply insert_enqueue_inv; try done; [apply Hi|]. intros l i _. by apply Hi.
Qed.

Lemma unblock_task_inv L id s : inv L s → inv L (unblock_task id s).
Proof.
  intros Hi. unfold unblock_task. destruct (tasks s !! id) as [info|] eqn:Eid; [|done].
  destruct (SchedTaskInfo.state info) eqn:Est; try done.
  destruct (not_queued L id s Hi) as [Hnin Hncur].
  { unfold task_state. rewrite Eid. simpl. by rewrite Est. }
  apply insert_enqueue_inv; try done; [apply Hi|]. intros l i _. by apply Hi.
Qed.

Lemma dequeue_next_inv (L : Prop) s :
  (L → current_task s = None) → inv L s → inv L (dequeue_next s).2.
Proof.
  intros Hnone [[Hnd Hq Hc] Hn]. unfold dequeue_next.
  destruct (pick_next s) as [[id|] q] eqn:E; apply pick_next_spec in E.
  - set (s' := push_event _ _).
    assert (∀ i, task_state i s' = task_state i s) as Hst.
    { intros i. unfold s', push_event.
      transitivity (task_state i (s <| tasks ::= alter
        (λ i, i <| SchedTaskInfo.ticks_in_quantum := 0 |>) id |>)); [done|].
      rewrite task_state_alter. case_decide; [|done]. done. }
    rewrite E in Hnd. apply NoDup_cons in Hnd as [Hnin Hnd].
    split; [split|]; simpl; [done|..].
    + intros i Hi. rewrite Hst. apply Hq. rewrite E. by right.
    + intros i [= <-]. rewrite Hst. split; [|done]. apply Hq. rewrite E. by left.
    + intros l i. rewrite Hst. intros [Hi|Hi]%(Hn l); simpl.
      * rewrite E in Hi. apply elem_of_cons in Hi as [->|?]; auto.
      * rewrite Hnone in Hi; done.
  - destruct E as [E ->]. split; [split|]; simpl; [by apply NoDup_nil|..].
    + by intros i ?%not_elem_of_nil.
    + done.
    + intros l i Hi. destruct (Hn l i Hi) as [H1|H1]; [rewrite E in H1; by left|].
      rewrite Hnone in H1; done.
Qed.

Lemma preempt_current_inv L s : inv L s → inv L (preempt_current s).2.
Proof.
  intros Hi. unfold preempt_current. destruct (current_task s) as [id|] eqn:Ec; [|done].
  destruct Hi as [[Hnd Hq Hc] Hn]. destruct (Hc id Ec) as [Hst Hnin].
  unfold task_state in Hst. apply fmap_Some in Hst as (info & Ei & Est). simpl. rewrite Ei.
  rewrite bool_decide_true by done.
  assert (wf (s <| current_task := None |>)) as Hw by by split.
  assert (L → ∀ i, i ≠ id → task_state i s = Some TaskState.Runnable →
    i ∈ run_queue s ∨ (None : option TaskId.t) = Some i) as Hrest.
  { intros l i Hne Hi. destruct (Hn l i Hi); [by left|congruence]. }
  destruct (budget_spent info) as [rt|].
  - split; [split|]; simpl; [done| |done|].
    + intros i Hi. transitivity (task_state i (s <| tasks ::= <[id := info
        <| SchedTaskInfo.state := TaskState.Blocked (RealTimeTask.next_deadline rt) |>
        <| SchedTaskInfo.ticks_in_quantum := 0 |> ]> |>)); [done|].
      rewrite task_state_insert, decide_False by (intros ->; done). by apply Hq.
    + intros l i. unfold task_state, push_event. simpl. rewrite lookup_insert.
      case_decide as Hd; [done|]. intros Hi. apply Hrest; auto.
  - eapply same_view_inv; [|apply (insert_enqueue_inv L id
      (info <| SchedTaskInfo.ticks_in_quantum := 0 |>) (s <| current_task := None |>))]; try done.
Qed.

Section order.
Context `{HashOrder}.

Lemma wake_ready_tasks_inv L s : inv L s → inv L (wake_ready_tasks s).
Proof.
  intros Hi. unfold wake_ready_tasks. apply (foldl_ind (inv L)); [done|].
  intros s1 id _. apply unblock_task_inv.
Qed.

Lemma on_tick_advanced_inv L d s s' :
  on_tick_advanced d s = Return s' → inv L s → inv L s'.
Proof.
  unfold on_tick_advanced. intros (now & _ & (s1 & H1 & (s2 & H2 & [= <-])%bind_Return)%bind_Return)%bind_Return.
  intros Hi. apply wake_ready_tasks_inv.
  apply charge_current_spec in H1 as [Hv1 _].
  apply refresh_deadlines_spec, refreshed_same_view in H2.
  eapply same_view_inv; [done|]. eapply same_view_inv; [done|].
  by eapply same_view_inv; [|done].
Qed.

Lemma set_real_time_params_inv L id p s :
  inv L s → inv L (set_real_time_params id p s).2.
Proof.
  intros Hi. unfold set_real_time_params.
  destruct (_ || _ || _); [done|]. destruct (1000000 <? _); [done|].
  destruct (tasks s !! id) as [info|] eqn:Eid; [|done]. simpl.
  set (info' := info <| SchedTaskInfo.realtime := _ |>).
  assert (∀ i, task_state i (s <| tasks ::= <[id := info']> |>) = task_state i s) as Hst.
  { intros i. rewrite task_state_insert. case_decide; [|done]. subst.
    unfold task_state. by rewrite Eid. }
  destruct (bool_decide _ && bool_decide _) eqn:Eb; simpl.
  2: { eapply same_view_inv; [|done]. by split_and!. }
  apply andb_true_iff in Eb as [Er%bool_decide_eq_true Ec%bool_decide_eq_true].
  destruct Hi as [[Hnd Hq Hc] Hn].
  assert (∀ i, i ∈ RunQueue.remove id (run_queue s) ↔ i ≠ id ∧ i ∈ run_queue s) as Hr.
  { intros i. unfold RunQueue.remove. by rewrite list_elem_of_filter. }
  eapply same_view_inv; [|apply (insert_enqueue_inv L id info'
    (s <| run_queue ::= RunQueue.remove id |>))]; simpl; try done.
  - split; simpl.
    + by apply NoDup_filter.
    + intros i [_ Hi]%Hr. by apply Hq.
    + intros i Hi. destruct (Hc i Hi) as [? ?]. split; [done|]. intros [_ ?]%Hr. done.
  - intros [? _]%Hr. done.
  - intros l i Hne Hi. rewrite Hr. destruct (Hn l i Hi); auto.
Qed.
End order.

(** Every operation keeps the invariant; selecting a task keeps its second part
    when no task is current. *)
Lemma exec_inv (L : Prop) o s s' `{HashOrder} :
  fresh_ids o s → (L → o = SchedOp.Dequeue → current_task s = None) →
  SchedOp.exec o s = Return s' → inv L s → inv L s'.
Proof.
  intros Hf Hd He Hi. destruct o; simpl in He; try injection He as <-; simpl in Hf.
  - by apply enqueue_inv.
  - apply dequeue_next_inv; auto.
  - by eapply on_tick_advanced_inv.
  - by apply set_real_time_params_inv.
  - by apply preempt_current_inv.
  - by apply block_task_inv.
  - by apply unblock_task_inv.
  - eapply same_view_inv; [|by apply (set_state_inv L id TaskState.Exited)]. done.
  - eapply same_view_inv; [|by apply (set_state_inv L id TaskState.Cancelled)]. done.
  - by apply wake_ready_tasks_inv.
Qed.

Lemma with_config_inv L c : inv L (with_config c).
Proof.
  split; [split|]; simpl; [by apply NoDup_nil|by intros i ?%not_elem_of_nil|done|].
  intros _ i. unfold task_state; simpl. by rewrite lookup_empty.
Qed.

(** ** Dispatch order *)

(** No deadline among [q] is before [d]. *)
Definition no_earlier (f : TaskId.t → option N) (d : N) (q : list TaskId.t) : Prop :=
  Forall (λ id, ∀ d', f id = Some d' → d ≤ d') q.

#[export] Instance no_earlier_proper :
  Proper (pointwise_relation _ eq ==> eq ==> eq ==> iff) no_earlier.
Proof.
  intros f g Hfg d ? <- q ? <-. unfold no_earlier. apply Forall_proper; [|done].
  intros id. by rewrite (Hfg id).
Qed.

(** [scan_deadlines] computes the first position of the smallest deadline below
    the bound it starts from. *)
Lemma scan_deadlines_min f q i b d j :
  RunQueue.scan_deadlines f q i b d = j →
  (j = b ∧ no_earlier f d q) ∨
  (∃ pre id post dj, q = pre ++ id :: post ∧ j = Some (i + length pre)%nat ∧
     f id = Some dj ∧ dj < d ∧ no_earlier f (dj + 1) pre ∧ no_earlier f dj post).
Proof.
  revert i b d. unfold no_earlier. induction q as [|x q IH]; intros i b d; simpl.
  { intros <-. left. by split. }
  destruct (f x) as [dx|] eqn:Ex; [destruct (N.ltb_spec dx d) as [Hlt|Hge]|].
  - intros [[-> Hall]|(pre&id&post&dj&->&->&Hdj&Hlt'&Hpre&Hpost)]%IH; right.
    + exists [], x, q, dx. split_and!; try done. by rewrite Nat.add_0_r.
    + exists (x :: pre), id, post, dj. split_and!; try done; [f_equal; simpl; lia|lia|].
      constructor; [|done]. intros d' ?. simplify_eq. lia.
  - intros [[-> Hall]|(pre&id&post&dj&->&->&Hdj&Hlt'&Hpre&Hpost)]%IH; [left|right].
    + split; [done|]. constructor; [|done]. intros d' ?. by simplify_eq.
    + exists (x :: pre), id, post, dj. split_and!; try done; [f_equal; simpl; lia|].
      constructor; [|done]. intros d' ?. simplify_eq. lia.
  - intros [[-> Hall]|(pre&id&post&dj&->&->&Hdj&Hlt'&Hpre&Hpost)]%IH; [left|right].
    + split; [done|]. constructor; [|done]. intros d' ?. by simplify_eq.
    + exists (x :: pre), id, post, dj. split_and!; try done; [f_equal; simpl; lia|].
      constructor; [|done]. intros d' ?. by simplify_eq.
Qed.

Lemma deadlines_lookup s id :
  (omap (λ info, RealTimeTask.next_deadline <$> SchedTaskInfo.realtime info) (tasks s)
     : gmap TaskId.t N) !! id = task_deadline s id.
Proof.
  rewrite lookup_omap. unfold task_deadline. destruct (tasks s !! id) as [info|]; [|done].
  simpl. by destruct (SchedTaskInfo.realtime info).
Qed.

Lemma dequeue_next_Some s id s' :
  dequeue_next s = (Some id, s') →
  ∃ q, pick_next s = (Some id, q) ∧ run_queue s' = q ∧ current_task s' = Some id ∧
       audit_log s' = audit_log s ++ [ScheduleEvent.TaskSelected id (current_ticks s)].
Proof.
  unfold dequeue_next. destruct (pick_next s) as [[?|] q]; [|done].
  intros [= -> <-]. by exists q.
Qed.

(** ** Waiting time under round robin *)

(** A sequence of operations, each under its own hash-map order. *)
Inductive run : list SchedOp.t → Scheduler.t → Scheduler.t → Prop :=
| run_nil s : run [] s s
| run_cons o ops s s1 s2 (HO : HashOrder) :
    SchedOp.exec o s = Return s1 → run ops s1 s2 → run (o :: ops) s s2.

(** The operations that take [id] out of the run queue (or move it back in it). *)
Definition displaces (id : TaskId.t) (o : SchedOp.t) : Prop :=
  match o with
  | SchedOp.Block i _ | SchedOp.Exit i | SchedOp.Cancel i | SchedOp.SetRealTime i _ => i = id
  | _ => False
  end.

Definition is_dequeue (o : SchedOp.t) : bool :=
  match o with SchedOp.Dequeue => true | _ => false end.
Definition dequeues (ops : list SchedOp.t) : nat := length (filter (λ o, is_dequeue o = true) ops).

(** From [s] to [s'] the task [id] moves only forward in the queue. *)
Definition keeps_place (id : TaskId.t) (s s' : Scheduler.t) : Prop :=
  config s' = config s ∧
  ∀ pre post, run_queue s = pre ++ id :: post →
    ∃ pre' post', run_queue s' = pre' ++ id :: post' ∧ (length pre' ≤ length pre)%nat.

#[export] Instance keeps_place_preorder id : PreOrder (keeps_place id).
Proof.
  split.
  - intros s. split; [done|]. eauto.
  - intros s1 s2 s3 [C1 H1] [C2 H2]. split; [congruence|]. intros pre post E.
    destruct (H1 _ _ E) as (pre1 & post1 & E1 & L1).
    destruct (H2 _ _ E1) as (pre2 & post2 & E2 & L2). exists pre2, post2. split; [done|lia].
Qed.

Lemma keeps_place_same id s s' :
  config s' = config s → run_queue s' = run_queue s → keeps_place id s s'.
Proof. intros Hc Hq. split; [done|]. intros pre post. rewrite Hq. eauto. Qed.

Lemma keeps_place_enqueue id i s :
  SchedulerConfig.realtime_policy (config s) = RealTimePolicy.None →
  keeps_place id s (enqueue_runnable i s).
Proof.
  intros Hp. unfold enqueue_runnable. rewrite Hp. split; [done|]. intros pre post E.
  exists pre, (post ++ [i]). simpl. rewrite E. unfold RunQueue.enqueue.
  by rewrite <- app_assoc.
Qed.

Lemma keeps_place_remove id i s :
  i ≠ id → keeps_place id s (s <| run_queue ::= RunQueue.remove i |>).
Proof.
  intros Hne. split; [done|]. intros pre post E. simpl. rewrite E. unfold RunQueue.remove.
  rewrite filter_app, filter_cons_True by done. eexists _, _. split; [done|].
  apply length_filter.
Qed.

Lemma keeps_place_leave id i s : i ≠ id → keeps_place id s (leave_queue i s).
Proof.
  intros Hne. unfold leave_queue. case_bool_decide; [|by apply keeps_place_remove].
  transitivity (s <| run_queue ::= RunQueue.remove i |>); [by apply keeps_place_remove|].
  by apply keeps_place_same.
Qed.

Lemma keeps_place_unblock id i s :
  SchedulerConfig.realtime_policy (config s) = RealTimePolicy.None →
  keeps_place id s (unblock_task i s).
Proof.
  intros Hp. unfold unblock_task. destruct (tasks s !! i) as [info|]; [|done].
  destruct (SchedTaskInfo.state info); try done.
  etransitivity; [|by apply keeps_place_enqueue]. by apply keeps_place_same.
Qed.

Lemma keeps_place_wake `{HashOrder} id s :
  SchedulerConfig.realtime_policy (config s) = RealTimePolicy.None →
  keeps_place id s (wake_ready_tasks s).
Proof.
  intros Hp. unfold wake_ready_tasks. apply (foldl_ind (keeps_place id s)); [done|].
  intros s1 i _ Hs1. etransitivity; [done|]. apply keeps_place_unblock.
  destruct Hs1 as [-> _]. done.
Qed.

Lemma keeps_place_tick `{HashOrder} id d s s' :
  SchedulerConfig.realtime_policy (config s) = RealTimePolicy.None →
  on_tick_advanced d s = Return s' → keeps_place id s s'.
Proof.
  unfold on_tick_advanced.
  intros Hp (now & _ & (s1 & H1 & (s2 & H2 & [= <-])%bind_Return)%bind_Return)%bind_Return.
  apply charge_current_spec in H1 as ((Q1 & _ & _) & C1 & _).
  apply refresh_deadlines_spec in H2 as []. simpl in *.
  transitivity s2; [apply keeps_place_same; congruence|].
  apply keeps_place_wake. congruence.
Qed.

Lemma keeps_place_preempt id s :
  SchedulerConfig.realtime_policy (config s) = RealTimePolicy.None →
  keeps_place id s (preempt_current s).2.
Proof.
  intros Hp. unfold preempt_current. destruct (current_task s) as [i|]; [|done]. simpl.
  destruct (tasks s !! i) as [info|]; [|by apply keeps_place_same].
  case_bool_decide; [|by apply keeps_place_same].
  destruct (budget_spent info); [by apply keeps_place_same|]. simpl.
  etransitivity; [|by apply keeps_place_same].
  etransitivity; [|by apply keeps_place_enqueue]. by apply keeps_place_same.
Qed.

Lemma keeps_place_set_rt `{HashOrder} id i p s :
  i ≠ id → SchedulerConfig.realtime_policy (config s) = RealTimePolicy.None →
  keeps_place id s (set_real_time_params i p s).2.
Proof.
  intros Hne Hp. unfold set_real_time_params.
  destruct (_ || _ || _); [done|]. destruct (1000000 <? _); [done|].
  destruct (tasks s !! i) as [info|]; [|done]. simpl.
  destruct (bool_decide _ && bool_decide _); simpl; [|by apply keeps_place_same].
  etransitivity; [|by apply keeps_place_enqueue].
  etransitivity; [by apply (keeps_place_remove id i)|]. by apply keeps_place_same.
Qed.

Lemma exec_keeps_place `{HashOrder} id o s s' :
  SchedulerConfig.realtime_policy (config s) = RealTimePolicy.None →
  ¬ displaces id o → is_dequeue o = false →
  SchedOp.exec o s = Return s' → keeps_place id s s'.
Proof.
  intros Hp Hd Hq He. destruct o; simpl in *; try done; try injection He as <-.
  - unfold enqueue. etransitivity; [|by apply keeps_place_enqueue]. by apply keeps_place_same.
  - by eapply keeps_place_tick.
  - by apply keeps_place_set_rt.
  - by apply keeps_place_preempt.
  - unfold block_task. etransitivity; [|by apply keeps_place_leave]. by apply keeps_place_same.
  - by apply keeps_place_unblock.
  - unfold exit_task, push_event. etransitivity; [|by apply keeps_place_same].
    etransitivity; [|by apply (keeps_place_leave id id0)]. by apply keeps_place_same.
  - unfold cancel_task, push_event. etransitivity; [|by apply keeps_place_same].
    etransitivity; [|by apply (keeps_place_leave id id0)]. by apply keeps_place_same.
  - by apply keeps_place_wake.
Qed.

Lemma dequeue_round_robin s x q :
  SchedulerConfig.realtime_policy (config s) = RealTimePolicy.None →
  run_queue s = x :: q →
  ∃ s', dequeue_next s = (Some x, s') ∧ run_queue s' = q ∧ config s' = config s ∧
        current_task s' = Some x.
Proof. intros Hp Hq. unfold dequeue_next, pick_next. rewrite Hp, Hq. simpl. eauto. Qed.

(** ** Wake-ups *)
Lemma unblock_task_state i id s :
  task_state i (unblock_task id s) =
  match task_state i s with
  | Some (TaskState.Blocked w) =>
      if decide (i = id) then Some TaskState.Runnable else Some (TaskState.Blocked w)
  | st => st
  end.
Proof.
  unfold unblock_task. destruct (tasks s !! id) as [info|] eqn:E.
  - assert (task_state id s = Some (SchedTaskInfo.state info)) as Hst
      by (unfold task_state; by rewrite E).
    destruct (SchedTaskInfo.state info) eqn:Es; [..|];
      try (destruct (task_state i s) as [[]|] eqn:Ei; try case_decide; congruence).
    match goal with |- task_state i (enqueue_runnable _ ?x) = _ =>
      destruct (enqueue_runnable_eq id x) as (q & -> & _) end.
    etransitivity; [apply (task_state_insert id _ s i)|].
    case_decide; subst; [by rewrite Hst|]. by destruct (task_state i s) as [[]|].
  - destruct (task_state i s) as [[]|] eqn:Ei; try done.
    case_decide; [|done]. subst. unfold task_state in Ei. by rewrite E in Ei.
Qed.

Lemma unblock_task_frame id s :
  config (unblock_task id s) = config s ∧ current_ticks (unblock_task id s) = current_ticks s ∧
  current_task (unblock_task id s) = current_task s ∧
  audit_log (unblock_task id s) = audit_log s.
Proof.
  unfold unblock_task. destruct (tasks s !! id) as [info|]; [|done].
  destruct (SchedTaskInfo.state info); try done.
  match goal with |- context [enqueue_runnable _ ?x] =>
    destruct (enqueue_runnable_eq id x) as (q & -> & _) end. done.
Qed.

Lemma unblock_fold_state l s i :
  task_state i (foldl (λ s id, unblock_task id s) s l) =
  match task_state i s with
  | Some (TaskState.Blocked w) =>
      if decide (i ∈ l) then Some TaskState.Runnable else Some (TaskState.Blocked w)
  | st => st
  end.
Proof.
  revert s. induction l as [|x l IH]; intros s; simpl.
  { by destruct (task_state i s) as [[]|]. }
  rewrite IH, unblock_task_state. destruct (task_state i s) as [[]|]; try done.
  destruct (decide (i = x)) as [->|Hne].
  - by rewrite decide_True by left.
  - destruct (decide (i ∈ l)); [by rewrite decide_True by (by right)|].
    rewrite decide_False; [done|]. by intros [?|?]%elem_of_cons.
Qed.

Lemma wake_ready_tasks_state `{HashOrder} s i :
  task_state i (wake_ready_tasks s) =
  match task_state i s with
  | Some (TaskState.Blocked w) =>
      if w <=? current_ticks s then Some TaskState.Runnable else Some (TaskState.Blocked w)
  | st => st
  end.
Proof.
  unfold wake_ready_tasks. rewrite unblock_fold_state.
  destruct (task_state i s) as [[]|] eqn:Ei; try done.
  unfold task_state in Ei. apply fmap_Some in Ei as (info & Hi & Hst).
  match goal with |- (if decide ?P then _ else _) = _ =>
    assert (P ↔ wake_tick <=? current_ticks s = true) as HP end.
  { rewrite list_elem_of_fmap. split.
    - intros ([i' info'] & -> & [Hr Hin%elem_of_hm_iter]%list_elem_of_filter).
      simpl in *. simplify_eq. unfold ready_to_wake in Hr. by rewrite <- Hst in Hr.
    - intros Hw. exists (i, info). split; [done|]. apply list_elem_of_filter.
      rewrite elem_of_hm_iter. split; [|done]. unfold ready_to_wake; simpl. by rewrite <- Hst. }
  destruct (wake_tick <=? current_ticks s); case_decide; naive_solver.
Qed.

Lemma wake_ready_tasks_frame `{HashOrder} s :
  config (wake_ready_tasks s) = config s ∧
  current_ticks (wake_ready_tasks s) = current_ticks s.
Proof.
  unfold wake_ready_tasks.
  apply (foldl_ind (λ s', config s' = config s ∧ current_ticks s' = current_ticks s)); [done|].
  intros s1 id _ [<- <-]. destruct (unblock_task_frame id s1) as (?&?&_). done.
Qed.

Lemma tick_ticks `{HashOrder} d s s' :
  on_tick_advanced d s = Return s' → current_ticks s' = current_ticks s + d.
Proof.
  unfold on_tick_advanced.
  intros (now & [-> _]%add_u64_Return & (s1 & H1 & (s2 & H2 & [= <-])%bind_Return)%bind_Return)%bind_Return.
  apply charge_current_spec in H1 as (_ & _ & T1 & _). apply refresh_deadlines_spec in H2 as [].
  destruct (wake_ready_tasks_frame s2) as [_ ->]. by rewrite rf_ticks0, T1.
Qed.

Lemma tick_state `{HashOrder} d s s' i :
  on_tick_advanced d s = Return s' →
  task_state i s' =
  match task_state i s with
  | Some (TaskState.Blocked w) =>
      if w <=? current_ticks s + d then Some TaskState.Runnable else Some (TaskState.Blocked w)
  | st => st
  end.
Proof.
  unfold on_tick_advanced.
  intros (now & [-> _]%add_u64_Return & (s1 & H1 & (s2 & H2 & [= <-])%bind_Return)%bind_Return)%bind_Return.
  apply charge_current_spec in H1 as ((_ & _ & V1) & _ & T1 & _).
  pose proof (refreshed_same_view _ _ (refresh_deadlines_spec _ _ H2)) as (_ & _ & V2).
  apply refresh_deadlines_spec in H2 as [].
  by rewrite wake_ready_tasks_state, V2, V1, rf_ticks0, T1.
Qed.

Lemma tick_current `{HashOrder} d s s' :
  on_tick_advanced d s = Return s' → current_task s' = current_task s.
Proof.
  unfold on_tick_advanced.
  intros (now & _ & (s1 & H1 & (s2 & H2 & [= <-])%bind_Return)%bind_Return)%bind_Return.
  apply charge_current_spec in H1 as ((_ & C1 & _) & _). apply refresh_deadlines_spec in H2 as [].
  unfold wake_ready_tasks.
  apply (foldl_ind (λ s', current_task s' = current_task s)); [by rewrite rf_current0|].
  intros s3 id _ <-. by destruct (unblock_task_frame id s3) as (_&_&?&_).
Qed.

Lemma wake_ready_tasks_realtime `{HashOrder} s i :
  SchedTaskInfo.realtime <$> tasks (wake_ready_tasks s) !! i =
  SchedTaskInfo.realtime <$> tasks s !! i.
Proof.
  unfold wake_ready_tasks. apply (foldl_ind (λ s', SchedTaskInfo.realtime <$> tasks s' !! i =
    SchedTaskInfo.realtime <$> tasks s !! i)); [done|].
  intros s1 id _ <-. unfold unblock_task. destruct (tasks s1 !! id) as [info|] eqn:E; [|done].
  destruct (SchedTaskInfo.state info); try done.
  match goal with |- context [enqueue_runnable _ ?x] =>
    destruct (enqueue_runnable_eq id x) as (q & -> & _) end.
  simpl. rewrite lookup_insert. case_decide; [|done]. subst. by rewrite E.
Qed.

(** After a tick the deadlines lie in the future. *)
Lemma tick_deadlines `{HashOrder} d s s' id info rt :
  on_tick_advanced d s = Return s' →
  tasks s' !! id = Some info → SchedTaskInfo.realtime info = Some rt →
  0 < RealTimeParams.period_ticks (RealTimeTask.params rt) →
  current_ticks s + d < RealTimeTask.next_deadline rt.
Proof.
  unfold on_tick_advanced.
  intros (now & [-> _]%add_u64_Return & (s1 & H1 & (s2 & H2 & [= <-])%bind_Return)%bind_Return)%bind_Return.
  intros Hid Hrt Hp. apply charge_current_spec in H1 as (_ & _ & T1 & _).
  apply refresh_deadlines_spec in H2 as []. simpl in T1. rewrite <- T1.
  pose proof (wake_ready_tasks_realtime s2 id) as Hw. rewrite Hid in Hw. simpl in Hw.
  symmetry in Hw. apply fmap_Some in Hw as (info2 & Hid2 & Hrt2).
  eapply rf_deadline0; [done| |done]. congruence.
Qed.

(** ** Finished tasks *)
Definition finished (id : TaskId.t) (s : Scheduler.t) : Prop :=
  task_state id s = Some TaskState.Exited ∨ task_state id s = Some TaskState.Cancelled.

Lemma finished_proper_state id s s' :
  task_state id s' = task_state id s → finished id s → finished id s'.
Proof. intros E. unfold finished. by rewrite E. Qed.

Lemma enqueue_runnable_state i id s : task_state i (enqueue_runnable id s) = task_state i s.
Proof. by destruct (enqueue_runnable_eq id s) as (q & -> & _). Qed.

Lemma set_state_finished id i st s :
  st = TaskState.Exited ∨ st = TaskState.Cancelled →
  finished id s → finished id (set_state st i s).
Proof.
  intros Hst Hf. unfold finished, set_state. rewrite task_state_alter.
  case_decide; [|done]. subst. simpl. unfold finished, task_state in Hf.
  destruct (tasks s !! i); simpl in *; naive_solver.
Qed.

Lemma leave_queue_state i id s : task_state i (leave_queue id s) = task_state i s.
Proof. unfold leave_queue. by case_bool_decide. Qed.

Lemma dequeue_next_state i s : task_state i (dequeue_next s).2 = task_state i s.
Proof.
  unfold dequeue_next. destruct (pick_next s) as [[id|] q]; [|done]. simpl.
  etransitivity; [apply (task_state_alter _ id s i)|]. by case_decide.
Qed.

Lemma preempt_finished id s : finished id s → finished id (preempt_current s).2.
Proof.
  intros Hf. unfold preempt_current. destruct (current_task s) as [i|]; [|done]. simpl.
  destruct (tasks s !! i) as [info|] eqn:Ei; [|done].
  case_bool_decide as Hr; [|done].
  assert (i ≠ id) as Hne.
  { intros ->. unfold finished, task_state in Hf. rewrite Ei in Hf. simpl in Hf.
    rewrite Hr in Hf. naive_solver. }
  destruct (budget_spent info); simpl; (eapply finished_proper_state; [|done]).
  - etransitivity; [apply (task_state_insert i _ s id)|]. by rewrite decide_False.
  - etransitivity; [apply enqueue_runnable_state|].
    etransitivity; [apply (task_state_insert i _ s id)|]. by rewrite decide_False.
Qed.

Lemma set_rt_state `{HashOrder} i id p s :
  task_state i (set_real_time_params id p s).2 = task_state i s.
Proof.
  unfold set_real_time_params.
  destruct (_ || _ || _); [done|]. destruct (1000000 <? _); [done|].
  destruct (tasks s !! id) as [info|] eqn:Eid; [|done]. simpl.
  destruct (bool_decide _ && bool_decide _); simpl; rewrite ?enqueue_runnable_state;
    (etransitivity; [apply (task_state_insert id _ s i)|]);
    (case_decide; [|done]); subst; unfold task_state; by rewrite Eid.
Qed.

Lemma exec_finished `{HashOrder} id o s s' :
  fresh_ids o s → (∀ w, o ≠ SchedOp.Block id w) →
  SchedOp.exec o s = Return s' → finished id s → finished id s'.
Proof.
  intros Hf Hb He Hfin. destruct o; simpl in *; try injection He as <-.
  - eapply finished_proper_state; [|done]. unfold enqueue. rewrite enqueue_runnable_state.
    rewrite task_state_insert, decide_False; [done|]. intros <-.
    unfold finished, task_state in Hfin. rewrite Hf in Hfin. naive_solver.
  - eapply finished_proper_state; [apply dequeue_next_state|done].
  - unfold finished in *. erewrite tick_state by done. destruct Hfin as [-> | ->]; auto.
  - eapply finished_proper_state; [apply set_rt_state|done].
  - by apply preempt_finished.
  - eapply finished_proper_state; [|done]. unfold block_task.
    rewrite leave_queue_state, task_state_alter, decide_False; [done|].
    intros <-. by eapply Hb.
  - unfold finished in *. rewrite unblock_task_state. destruct Hfin as [-> | ->]; auto.
  - eapply finished_proper_state; [etransitivity; [|apply leave_queue_state]; done|].
    apply set_state_finished; auto.
  - eapply finished_proper_state; [etransitivity; [|apply leave_queue_state]; done|].
    apply set_state_finished; auto.
  - unfold finished in *. rewrite wake_ready_tasks_state. destruct Hfin as [-> | ->]; auto.
Qed.

(** ** Counters stay in range *)

(** What the checked additions of a tick rely on. *)
Definition rt_ok (rt : RealTimeTask.t) : Prop :=
  0 < RealTimeParams.period_ticks (RealTimeTask.params rt) ∧
  RealTimeTask.deadline_misses rt < RealTimeTask.next_deadline rt ∧
  RealTimeTask.next_deadline rt ≤ u64_max.
Definition task_ok (now : N) (info : SchedTaskInfo.t) : Prop :=
  SchedTaskInfo.ticks_in_quantum info ≤ now ∧
  ∀ rt, SchedTaskInfo.realtime info = Some rt → rt_ok rt.
Definition table_ok (s : Scheduler.t) : Prop :=
  map_Forall (λ _, task_ok (current_ticks s)) (tasks s).

(** One round of the deadline loop. *)
Lemma rt_ok_next now rt m :
  now < u64_max → RealTimeTask.next_deadline rt ≤ now → rt_ok rt →
  m ≤ RealTimeTask.deadline_misses rt + 1 →
  rt_ok (RealTimeTask.reset_for_next_period (rt <| RealTimeTask.deadline_misses := m |>)).
Proof. intros Hnow Hd (Hp & Hm & _) Hle. split; simpl; [done|]. unfold saturating_add. lia. Qed.

Lemma refresh_loop_ok fuel id now rt log :
  now < u64_max → rt_ok rt →
  match refresh_loop fuel id now rt log with
  | Return (rt', _) => rt_ok rt'
  | Panic => False
  | Diverge => True
  end.
Proof.
  intros Hnow. revert rt log. induction fuel as [|fuel IH]; intros rt log Hok; simpl; [done|].
  destruct (N.leb_spec (RealTimeTask.next_deadline rt) now) as [Hd|]; [|done].
  pose proof Hok as (_ & Hm & _).
  destruct (0 <? RealTimeTask.remaining_budget rt).
  - assert (add_u64 (RealTimeTask.deadline_misses rt) 1
      = Return (RealTimeTask.deadline_misses rt + 1)) as -> by (apply add_u64_Return; lia).
    simpl. apply IH, (rt_ok_next now); try done.
  - apply IH. replace rt with (rt <| RealTimeTask.deadline_misses :=
      RealTimeTask.deadline_misses rt |>) by by destruct rt.
    apply (rt_ok_next now); try done. lia.
Qed.

Lemma refresh_task_ok now id info log :
  now < u64_max → task_ok now info →
  ∃ info' log', refresh_task now id info log = Return (info', log') ∧ task_ok now info'.
Proof.
  intros Hnow [Hq Hrt]. unfold refresh_task.
  destruct (SchedTaskInfo.realtime info) as [rt|] eqn:Ert.
  2: { eexists _, _. split; [done|]. split; [done|]. by rewrite Ert. }
  destruct (Hrt rt eq_refl) as (Hp & _ & _).
  destruct (N.eqb_spec (RealTimeParams.period_ticks (RealTimeTask.params rt)) 0); [lia|].
  pose proof (refresh_fuel_enough id now rt log Hnow Hp) as Hdiv.
  pose proof (refresh_loop_ok (refresh_fuel now rt) id now rt log Hnow (Hrt rt eq_refl)) as Hok.
  destruct (refresh_loop _ id now rt log) as [[rt' log']| |]; [|done..].
  eexists _, _. split; [done|]. split; simpl; [done|]. by intros ? [= <-].
Qed.

Section table.
Context `{HashOrder}.

Lemma refresh_deadlines_ok s :
  current_ticks s < u64_max → table_ok s →
  ∃ s', refresh_deadlines s = Return s' ∧ table_ok s'.
Proof.
  intros Hnow Hok. unfold refresh_deadlines.
  destruct (fold_outcome_returns (λ s', current_ticks s' = current_ticks s ∧ table_ok s')
    (λ s' '(id, info), '(info', log) ← refresh_task (current_ticks s) id info (audit_log s');
      Return (s' <| tasks ::= <[id := info']> |> <| audit_log := log |>))
    (hm_iter (tasks s)) s) as (s' & E & _ & ?); [done| |eauto].
  intros s1 [id info] Hin%elem_of_hm_iter [Ht Hs1].
  destruct (refresh_task_ok (current_ticks s) id info (audit_log s1)) as (info' & log' & E & Hi);
    [done|by eapply Hok|].
  rewrite E. eexists. split; [done|]. split; [done|].
  unfold table_ok; simpl. apply map_Forall_insert_2; [by rewrite Ht|done].
Qed.

Lemma charge_current_ok d s s0 :
  table_ok s → s0 = s <| current_ticks := current_ticks s + d |> →
  current_ticks s + d ≤ u64_max →
  ∃ s', charge_current d s0 = Return s' ∧ table_ok s' ∧ current_ticks s' = current_ticks s + d.
Proof.
  intros Hok -> Hb. unfold charge_current; simpl.
  assert (∀ info, task_ok (current_ticks s) info → task_ok (current_ticks s + d) info) as Hmono.
  { intros info [Hq Hrt]. split; [lia|done]. }
  assert (table_ok (s <| current_ticks := current_ticks s + d |>)) as Hok'.
  { intros id info Hid. apply Hmono. by eapply Hok. }
  destruct (current_task s) as [id|]; [|by eexists].
  destruct (tasks s !! id) as [info|] eqn:Ei; [|by eexists].
  destruct (Hok id info Ei) as [Hq Hrt].
  assert (add_u64 (SchedTaskInfo.ticks_in_quantum info) d
    = Return (SchedTaskInfo.ticks_in_quantum info + d)) as -> by (apply add_u64_Return; lia).
  eexists. split; [done|]. split; [|done]. unfold table_ok; simpl.
  apply map_Forall_insert_2; [|exact Hok']. split; simpl; [lia|].
  intros rt. destruct (SchedTaskInfo.realtime info) as [rt0|]; [|done].
  intros [= <-]. by apply (Hrt rt0).
Qed.

Lemma table_ok_insert id info s :
  table_ok s → task_ok (current_ticks s) info → table_ok (s <| tasks ::= <[id := info]> |>).
Proof. intros ??. by apply map_Forall_insert_2. Qed.

Lemma table_ok_alter id f s :
  table_ok s → (∀ info, task_ok (current_ticks s) info → task_ok (current_ticks s) (f info)) →
  table_ok (s <| tasks ::= alter f id |>).
Proof.
  intros Hok Hf i info. simpl. rewrite lookup_alter. case_decide; [|apply Hok].
  subst. intros (info0 & Hi & ->)%fmap_Some. apply Hf. by eapply Hok.
Qed.

Lemma table_ok_enqueue_runnable id s : table_ok s → table_ok (enqueue_runnable id s).
Proof. by destruct (enqueue_runnable_eq id s) as (q & -> & _). Qed.

Lemma task_ok_idle now info st :
  task_ok now info →
  task_ok now (info <| SchedTaskInfo.state := st |> <| SchedTaskInfo.ticks_in_quantum := 0 |>).
Proof. intros [_ Hr]. split; simpl; [lia|done]. Qed.

Lemma table_ok_unblock id s : table_ok s → table_ok (unblock_task id s).
Proof.
  intros Hok. unfold unblock_task. destruct (tasks s !! id) as [info|] eqn:E; [|done].
  destruct (SchedTaskInfo.state info); try done.
  apply table_ok_enqueue_runnable, table_ok_insert, task_ok_idle; [done|]. by eapply Hok.
Qed.

Lemma table_ok_wake s : table_ok s → table_ok (wake_ready_tasks s).
Proof.
  intros Hok. unfold wake_ready_tasks. apply (foldl_ind table_ok); [done|].
  intros s1 id _. apply table_ok_unblock.
Qed.

(** A tick that does not reach the largest tick count returns. *)
Lemma on_tick_advanced_ok d s :
  table_ok s → current_ticks s + d < u64_max →
  ∃ s', on_tick_advanced d s = Return s' ∧ table_ok s'.
Proof.
  intros Hok Hb. unfold on_tick_advanced.
  assert (add_u64 (current_ticks s) d = Return (current_ticks s + d)) as ->
    by (apply add_u64_Return; lia).
  destruct (charge_current_ok d s _ Hok eq_refl) as (s1 & E1 & Hok1 & T1); [lia|].
  simpl. rewrite E1. simpl.
  destruct (refresh_deadlines_ok s1) as (s2 & E2 & Hok2); [by rewrite T1|done|].
  rewrite E2. eexists. split; [done|]. by apply table_ok_wake.
Qed.

(** A tick that does reach it returns only when no task is under real-time
    control. *)
Lemma on_tick_advanced_table d s s' :
  table_ok s → on_tick_advanced d s = Return s' → table_ok s'.
Proof.
  intros Hok. unfold on_tick_advanced.
  intros (now & [-> Hle]%add_u64_Return & (s1 & H1 & (s2 & H2 & [= <-])%bind_Return)%bind_Return)%bind_Return.
  apply table_ok_wake.
  destruct (charge_current_ok d s _ Hok eq_refl Hle) as (s1' & E1 & Hok1 & T1).
  rewrite E1 in H1. injection H1 as ->.
  destruct (decide (current_ticks s1 < u64_max)) as [Hlt|Hge].
  { destruct (refresh_deadlines_ok s1 Hlt Hok1) as (s2' & E2 & ?).
    rewrite H2 in E2. by injection E2 as ->. }
  apply refresh_fold_spec in H2 as (_&_&_&T2&E5&E6);
    [|apply hm_iter_NoDup_fst|intros id info; apply elem_of_hm_iter].
  intros id info' Hid. rewrite T2.
  destruct (tasks s1 !! id) as [info|] eqn:Ei.
  2: { rewrite E5, Ei in Hid; [done|]. rewrite elem_of_hm_iter_fst, Ei. by intros [??]. }
  destruct (E6 id info) as (info2 & log & log' & Hid2 & Hr); [by apply elem_of_hm_iter|].
  simplify_eq. destruct (Hok1 id info Ei) as [Hq Hrt]. unfold refresh_task in Hr.
  destruct (SchedTaskInfo.realtime info) as [rt|] eqn:Ert.
  2: { simplify_eq. split; [done|]. by rewrite Ert. }
  destruct (Hrt rt eq_refl) as (Hp & _ & Hd).
  destruct (N.eqb_spec (RealTimeParams.period_ticks (RealTimeTask.params rt)) 0); [lia|].
  apply bind_Return in Hr as (r & Hl & _).
  exfalso. revert Hl. apply refresh_loop_stuck; [lia|done].
Qed.
End table.

Lemma with_config_table_ok c : table_ok (with_config c).
Proof. apply map_Forall_empty. Qed.

Lemma exec_table_ok `{HashOrder} o s s' :
  SchedOp.exec o s = Return s' → table_ok s → table_ok s'.
Proof.
  intros He Hok. destruct o; simpl in He; try injection He as <-.
  - apply table_ok_enqueue_runnable, table_ok_insert; [done|]. split; simpl; [lia|done].
  - unfold dequeue_next. destruct (pick_next s) as [[id|] q]; [|done].
    apply (table_ok_alter id _ s); [done|]. intros info [_ Hr]. split; simpl; [lia|done].
  - by eapply on_tick_advanced_table.
  - unfold set_real_time_params. destruct (_ || _ || _) eqn:Ev; [done|].
    destruct (1000000 <? _); [done|]. destruct (tasks s !! id) as [info|] eqn:Eid; [|done].
    apply orb_false_iff in Ev as [[Hp Hbz]%orb_false_iff _].
    apply N.eqb_neq in Hp. simpl.
    set (info' := info <| SchedTaskInfo.realtime := _ |>).
    assert (table_ok (s <| tasks ::= <[id := info']> |>)) as Hok'.
    { apply table_ok_insert; [done|]. destruct (Hok id info Eid) as [Hq _]. split; [done|].
      intros rt [= <-]. split; simpl; [lia|]. unfold saturating_add, u64_max. lia. }
    destruct (bool_decide _ && bool_decide _); simpl; [|done].
    by apply table_ok_enqueue_runnable.
  - unfold preempt_current. destruct (current_task s) as [id|]; [|done]. simpl.
    destruct (tasks s !! id) as [info|] eqn:Ei; [|done].
    case_bool_decide; [|done]. pose proof (Hok id info Ei) as Hi.
    destruct (budget_spent info) as [rt|]; simpl.
    + by apply (table_ok_insert id _ s), task_ok_idle.
    + apply (table_ok_enqueue_runnable id), (table_ok_insert id _ s); [done|].
      destruct Hi as [_ Hr]. split; simpl; [lia|done].
  - unfold block_task, leave_queue. case_bool_decide;
      (apply (table_ok_alter id _ s); [done|intros info; apply task_ok_idle]).
  - by apply table_ok_unblock.
  - unfold exit_task, leave_queue, push_event, set_state. case_bool_decide;
      (apply (table_ok_alter id _ s); [done|intros info [? ?]; by split]).
  - unfold cancel_task, leave_queue, push_event, set_state. case_bool_decide;
      (apply (table_ok_alter id _ s); [done|intros info [? ?]; by split]).
  - by apply table_ok_wake.
Qed.

(** ** Admission control *)
Definition shares (s : Scheduler.t) : gmap TaskId.t N := info_share <$> tasks s.
Definition map_total (m : gmap TaskId.t N) : N := sumN (map_to_list m).*2.
Definition total_share (s : Scheduler.t) : N := map_total (shares s).

Lemma map_total_insert id v m : map_total (<[id := v]> m) = v + map_total (delete id m).
Proof.
  unfold map_total. rewrite <- insert_delete_eq.
  by rewrite (sumN_perm _ (v :: (map_to_list (delete id m)).*2))
    by (rewrite map_to_list_insert by apply lookup_delete_eq; done).
Qed.

Lemma map_total_delete_le id m : map_total (delete id m) ≤ map_total m.
Proof.
  destruct (m !! id) as [v|] eqn:E; [|by rewrite delete_id].
  rewrite <- (insert_id m id v E) at 2. rewrite map_total_insert. lia.
Qed.

Lemma sumN_app l k : sumN (l ++ k) = sumN l + sumN k.
Proof. induction l; simpl; lia. Qed.

Section admission.
Context `{HashOrder}.

Lemma total_share_iter s : sumN (info_share <$> hm_values (tasks s)) = total_share s.
Proof.
  unfold hm_values, total_share, map_total, shares. apply sumN_perm.
  rewrite hm_iter_perm, map_to_list_fmap. by rewrite <- !list_fmap_compose.
Qed.

(** The sum [utilization_ppm_with] forms is the total the table would have. *)
Lemma utilization_with_total id p s :
  is_Some (tasks s !! id) →
  sumN ((λ '(i, info), if decide (i = id) then share_ppm p else info_share info)
          <$> hm_iter (tasks s)) = map_total (<[id := share_ppm p]> (shares s)).
Proof.
  intros [info Hid]. rewrite map_total_insert.
  rewrite (sumN_perm _ ((λ '(i, info), if decide (i = id) then share_ppm p else info_share info)
    <$> ((id, info) :: map_to_list (delete id (tasks s))))).
  2: { by rewrite hm_iter_perm, map_to_list_delete. }
  simpl. rewrite decide_True by done. f_equal. unfold map_total, shares.
  rewrite <- fmap_delete. rewrite (sumN_perm (map_to_list (info_share <$> _)).*2
    (info_share <$> (map_to_list (delete id (tasks s))).*2)).
  2: { rewrite map_to_list_fmap. by rewrite <- !list_fmap_compose. }
  f_equal. rewrite <- list_fmap_compose. apply list_fmap_ext. intros k [i x] Hk. simpl.
  rewrite decide_False; [done|]. intros ->.
  apply list_elem_of_lookup_2, elem_of_map_to_list in Hk. by rewrite lookup_delete_eq in Hk.
Qed.

Lemma shares_enqueue_runnable id s : shares (enqueue_runnable id s) = shares s.
Proof. by destruct (enqueue_runnable_eq id s) as (q & -> & _). Qed.

Lemma shares_insert id info s :
  shares (s <| tasks ::= <[id := info]> |>) = <[id := info_share info]> (shares s).
Proof. unfold shares; simpl. by rewrite fmap_insert. Qed.

Lemma shares_same id info info' s :
  tasks s !! id = Some info → info_share info' = info_share info →
  <[id := info_share info']> (shares s) = shares s.
Proof.
  intros Hid E. apply insert_id. unfold shares. rewrite lookup_fmap, Hid. simpl. by rewrite E.
Qed.

Lemma shares_alter id f s :
  (∀ info, info_share (f info) = info_share info) →
  shares (s <| tasks ::= alter f id |>) = shares s.
Proof.
  intros Hf. unfold shares; simpl. apply map_eq. intros i.
  rewrite !lookup_fmap, lookup_alter. case_decide; [|done]. subst.
  destruct (tasks s !! i); simpl; [|done]. by rewrite Hf.
Qed.

Lemma shares_unblock id s : shares (unblock_task id s) = shares s.
Proof.
  unfold unblock_task. destruct (tasks s !! id) as [info|] eqn:E; [|done].
  destruct (SchedTaskInfo.state info); try done.
  rewrite shares_enqueue_runnable, shares_insert. by eapply shares_same.
Qed.

Lemma shares_wake s : shares (wake_ready_tasks s) = shares s.
Proof.
  unfold wake_ready_tasks. apply (foldl_ind (λ s', shares s' = shares s)); [done|].
  intros s1 id _ <-. apply shares_unblock.
Qed.

Lemma shares_tick d s s' : on_tick_advanced d s = Return s' → shares s' = shares s.
Proof.
  unfold on_tick_advanced.
  intros (now & _ & (s1 & H1 & (s2 & H2 & [= <-])%bind_Return)%bind_Return)%bind_Return.
  rewrite shares_wake. apply charge_current_spec in H1 as (_ & _ & _ & S1).
  apply refresh_deadlines_spec in H2 as []. apply map_eq. intros i. unfold shares.
  rewrite !lookup_fmap. transitivity (info_share <$> tasks s1 !! i); [|apply S1].
  specialize (rf_tasks0 i). destruct (tasks s1 !! i), (tasks s2 !! i); try done.
  simpl. f_equal. apply rf_tasks0.
Qed.

(** Admission is checked on numbers that cannot wrap around. *)
Lemma set_rt_total id p s :
  total_share s ≤ 1000000 → total_share (set_real_time_params id p s).2 ≤ 1000000.
Proof.
  intros Ht. unfold set_real_time_params. destruct (_ || _ || _) eqn:Ev; [done|].
  destruct (N.ltb_spec 1000000 (utilization_ppm_with id p s)) as [|Hu]; [done|].
  destruct (tasks s !! id) as [info|] eqn:Eid; [|done].
  apply orb_false_iff in Ev as [[Hp Hbz]%orb_false_iff Hle].
  apply N.eqb_neq in Hp. apply N.ltb_ge in Hle.
  assert (share_ppm p ≤ 1000000) as Hsh.
  { unfold share_ppm. apply N.eqb_neq in Hp as Hp'. rewrite Hp'.
    apply N.Div0.div_le_upper_bound. nia. }
  unfold utilization_ppm_with in Hu. rewrite utilization_with_total in Hu by eauto.
  assert (map_total (<[id := share_ppm p]> (shares s)) < 2 ^ 64) as Hlt.
  { rewrite map_total_insert. pose proof (map_total_delete_le id (shares s)).
    unfold total_share in Ht. lia. }
  rewrite N.mod_small in Hu by done. simpl.
  assert (∀ q, total_share (s <| tasks ::= <[id := info <| SchedTaskInfo.realtime :=
    Some (RealTimeTask.new p (current_ticks s)) |> ]> |> <| run_queue := q |>) ≤ 1000000) as Hgoal.
  { intros q. unfold total_share.
    pose proof (shares_insert id (info <| SchedTaskInfo.realtime :=
      Some (RealTimeTask.new p (current_ticks s)) |>) s) as E.
    unfold shares in *. simpl in *. by rewrite E. }
  destruct (bool_decide _ && bool_decide _); simpl; [|apply (Hgoal (run_queue s))].
  unfold total_share. rewrite shares_enqueue_runnable. apply Hgoal.
Qed.

Lemma total_share_same s s' b : total_share s ≤ b → shares s' = shares s → total_share s' ≤ b.
Proof. unfold total_share. by intros ? ->. Qed.

Lemma exec_total_share o s s' :
  fresh_ids o s → SchedOp.exec o s = Return s' →
  total_share s ≤ 1000000 → total_share s' ≤ 1000000.
Proof.
  intros Hf He Ht. destruct o; simpl in *; try injection He as <-.
  - unfold total_share, enqueue. rewrite shares_enqueue_runnable, shares_insert.
    rewrite map_total_insert. change (info_share _) with 0.
    pose proof (map_total_delete_le id (shares s)). unfold total_share in Ht. lia.
  - apply (total_share_same s _ _ Ht). unfold dequeue_next. destruct (pick_next s) as [[id|] q]; [|done].
    by apply (shares_alter id _ s).
  - apply (total_share_same s _ _ Ht). by eapply shares_tick.
  - by apply set_rt_total.
  - apply (total_share_same s _ _ Ht). unfold preempt_current. destruct (current_task s) as [id|]; [|done]. simpl.
    destruct (tasks s !! id) as [info|] eqn:Ei; [|done]. case_bool_decide; [|done].
    destruct (budget_spent info); simpl.
    + etransitivity; [apply (shares_insert id _ s)|]. by eapply shares_same.
    + etransitivity; [apply (shares_enqueue_runnable id)|].
      etransitivity; [apply (shares_insert id _ s)|]. by eapply shares_same.
  - apply (total_share_same s _ _ Ht). unfold block_task, leave_queue. case_bool_decide; by apply (shares_alter id _ s).
  - apply (total_share_same s _ _ Ht). by apply shares_unblock.
  - apply (total_share_same s _ _ Ht). unfold exit_task, leave_queue, set_state. case_bool_decide; by apply (shares_alter id _ s).
  - apply (total_share_same s _ _ Ht). unfold cancel_task, leave_queue, set_state. case_bool_decide; by apply (shares_alter id _ s).
  - apply (total_share_same s _ _ Ht). by apply shares_wake.
Qed.
End admission.

(** ** Concrete runs *)

(** Run [ops] under one hash-map order, checking each call against [ok]. *)
Fixpoint checked_run (ok : SchedOp.t → Scheduler.t → bool) (ops : list SchedOp.t)
    (s : Scheduler.t) : option Scheduler.t :=
  match ops with
  | [] => Some s
  | o :: ops' =>
      if ok o s then
        match @SchedOp.exec canonical_order o s with
        | Return s1 => checked_run ok ops' s1
        | _ => None
        end
      else None
  end.

Definition fresh_idsb (o : SchedOp.t) (s : Scheduler.t) : bool :=
  match o with SchedOp.Enqueue id => bool_decide (tasks s !! id = None) | _ => true end.
Definition disciplinedb (o : SchedOp.t) (s : Scheduler.t) : bool :=
  fresh_idsb o s && (if is_dequeue o then bool_decide (current_task s = None) else true).

Lemma checked_run_reach (okb : SchedOp.t → Scheduler.t → bool) ok ops s0 s s' :
  (∀ o x, okb o x = true → ok o x) →
  reach ok s0 s → checked_run okb ops s = Some s' → reach ok s0 s'.
Proof.
  intros Hok. revert s. induction ops as [|o ops IH]; intros s Hs; simpl; [by intros [= <-]|].
  destruct (okb o s) eqn:Eo; [|done].
  destruct (@SchedOp.exec canonical_order o s) as [s1| |] eqn:E; [|done..].
  apply IH. by eapply (reach_step _ _ _ _ o canonical_order); [|apply Hok|].
Qed.

Lemma fresh_idsb_sound o s : fresh_idsb o s = true → fresh_ids o s.
Proof. destruct o; simpl; try done. by intros ?%bool_decide_eq_true. Qed.

Lemma disciplinedb_sound o s : disciplinedb o s = true → disciplined o s.
Proof.
  unfold disciplinedb. intros [?%fresh_idsb_sound Hd]%andb_true_iff. split; [done|].
  intros ->. simpl in Hd. by apply bool_decide_eq_true in Hd.
Qed.

Lemma checked_run_run ops s s' : checked_run (λ _ _, true) ops s = Some s' → run ops s s'.
Proof.
  revert s. induction ops as [|o ops IH]; intros s; simpl; [intros [= <-]; constructor|].
  destruct (@SchedOp.exec canonical_order o s) as [s1| |] eqn:E; [|done..].
  intros ?%IH. by econstructor.
Qed.

(** Two tasks, one of them under real-time control, under either policy. *)
Definition task_a : TaskId.t := TaskId.mk 1.
Definition task_b : TaskId.t := TaskId.mk 2.
Definition sample_config (p : RealTimePolicy.t) : SchedulerConfig.t :=
  SchedulerConfig.mk 5 None p.
Definition sample_ops : list SchedOp.t :=
  [SchedOp.Enqueue task_a; SchedOp.Enqueue task_b;
   SchedOp.SetRealTime task_b (RealTimeParams.mk 10 4);
   SchedOp.Dequeue; SchedOp.Tick 3; SchedOp.Preempt; SchedOp.Dequeue;
   SchedOp.Block task_b 7; SchedOp.Exit task_b; SchedOp.Block task_a 12].
Definition sample_run (n : nat) (p : RealTimePolicy.t) : Scheduler.t :=
  default (with_config (sample_config p))
    (checked_run disciplinedb (take n sample_ops) (with_config (sample_config p))).

Lemma sample_run_disciplined n p : reach disciplined (with_config (sample_config p)) (sample_run n p).
Proof.
  unfold sample_run. destruct (checked_run _ _ _) eqn:E; simpl; [|constructor].
  eapply checked_run_reach; [apply disciplinedb_sound|constructor|done].
Qed.

Lemma sample_run_fresh n p : reach fresh_ids (with_config (sample_config p)) (sample_run n p).
Proof.
  unfold sample_run. destruct (checked_run _ _ _) eqn:E; simpl; [|constructor].
  eapply checked_run_reach; [|constructor|done].
  by intros o x [? _]%disciplinedb_sound.
Qed.

Module SchedSpec.
(** However a client drives the scheduler (each enqueued identifier being new),
    the run queue holds no task twice, queues only runnable tasks, and the current
    task is runnable and not queued at the same time; this holds for every hash-map
    iteration order. *)
Theorem scheduler_reachable_wf c s :
  reach fresh_ids (with_config c) s → wf s.
Proof.
  intros Hr. apply (reach_invariant fresh_ids (inv False) _ _) in Hr as [? _]; [done|..].
  - apply with_config_inv.
  - intros s1 s2 o HO Hi Hf He. by eapply exec_inv.
Qed.

Lemma scheduler_reachable_wf_witness : wf (sample_run 6 RealTimePolicy.None).
Proof. apply (scheduler_reachable_wf (sample_config RealTimePolicy.None)), sample_run_fresh. Defined.

(** C28: when a client selects a task only while none is current, no runnable task is
    ever lost: each one is in the run queue or is the current task. *)
Theorem scheduler_loses_no_task c s :
  reach disciplined (with_config c) s → no_lost_task s.
Proof.
  intros Hr. apply (reach_invariant disciplined (inv True) _ _) in Hr as [_ Hn]; [by apply Hn|..].
  - apply with_config_inv.
  - intros s1 s2 o HO Hi [Hf Hd] He. eapply exec_inv; eauto.
Qed.

Lemma scheduler_loses_no_task_witness :
  no_lost_task (sample_run 7 RealTimePolicy.EarliestDeadlineFirst).
Proof.
  apply (scheduler_loses_no_task (sample_config RealTimePolicy.EarliestDeadlineFirst)).
  apply sample_run_disciplined.
Defined.

(** Under earliest-deadline-first, [dequeue_next] selects a queued task whose
    deadline is no later than that of any other queued task, the first queued one
    among equals (deadlines saturated at the largest tick count as none); when no
    queued task has such a deadline it selects the head of the queue. *)
Theorem edf_selects_earliest s id s' :
  SchedulerConfig.realtime_policy (config s) = RealTimePolicy.EarliestDeadlineFirst →
  dequeue_next s = (Some id, s') →
  ∃ pre post, run_queue s = pre ++ id :: post ∧ run_queue s' = pre ++ post ∧
    ((∃ d, task_deadline s id = Some d ∧ d < u64_max ∧
           no_earlier (task_deadline s) (d + 1) pre ∧ no_earlier (task_deadline s) d post) ∨
     (pre = [] ∧ no_earlier (task_deadline s) u64_max (run_queue s))).
Proof.
  intros Hpol (q & Hp & Hq & _)%dequeue_next_Some. unfold pick_next in Hp. rewrite Hpol in Hp.
  unfold RunQueue.dequeue_earliest_deadline in Hp.
  set (f := λ i, (omap _ (tasks s) : gmap TaskId.t N) !! i) in Hp.
  assert (pointwise_relation _ eq f (task_deadline s)) as Hf by (intros i; apply deadlines_lookup).
  setoid_rewrite <- Hf.
  destruct (scan_deadlines_min f (run_queue s) 0 None u64_max _ eq_refl)
    as [[Hs Hall]|(pre&x&post&d&Er&Hs&Hd&Hlt&Hpre&Hpost)]; rewrite Hs in Hp.
  - destruct (run_queue s) as [|y q'] eqn:Er; [done|]. injection Hp as -> ->.
    exists [], q. split_and!; [done|done|]. by right.
  - rewrite Er, list_lookup_middle in Hp by done.
    injection Hp as -> Hdel. simpl in Hdel. rewrite delete_middle in Hdel. exists pre, post. split_and!; [done|congruence|].
    left. exists d. by rewrite <- (Hf id).
Qed.

Lemma edf_selects_earliest_witness :
  let s := sample_run 3 RealTimePolicy.EarliestDeadlineFirst in
  ∃ pre post, run_queue s = pre ++ task_b :: post ∧
    run_queue (dequeue_next s).2 = pre ++ post ∧
    ((∃ d, task_deadline s task_b = Some d ∧ d < u64_max ∧
           no_earlier (task_deadline s) (d + 1) pre ∧ no_earlier (task_deadline s) d post) ∨
     (pre = [] ∧ no_earlier (task_deadline s) u64_max (run_queue s))).
Proof. apply (edf_selects_earliest _ task_b); vm_compute; reflexivity. Defined.

(** C29: round robin does not starve a task: one that waits at position [k] of the
    queue is the current task after at most [k + 1] further selections, whatever
    else happens in between, as long as nobody blocks, ends or re-parametrises it. *)
Theorem round_robin_no_starvation ops s s' id k :
  SchedulerConfig.realtime_policy (config s) = RealTimePolicy.None →
  run_queue s !! k = Some id → run ops s s' →
  Forall (λ o, ¬ displaces id o) ops → (k < dequeues ops)%nat →
  ∃ ops1 ops2 s1, ops = ops1 ++ SchedOp.Dequeue :: ops2 ∧ (dequeues ops1 ≤ k)%nat ∧
    run (ops1 ++ [SchedOp.Dequeue]) s s1 ∧ current_task s1 = Some id.
Proof.
  intros Hp Hk Hrun. assert (∃ pre post, run_queue s = pre ++ id :: post ∧ (length pre ≤ k)%nat)
    as (pre & post & Hq & Hlen).
  { apply list_elem_of_split_length in Hk as (pre & post & ? & ->). eauto. }
  clear Hk. revert k pre post Hp Hq Hlen.
  induction Hrun as [s|o ops s s1 s2 HO He Hrun IH]; intros k pre post Hp Hq Hlen Hf Hc.
  { unfold dequeues in Hc. simpl in Hc. lia. }
  apply Forall_cons in Hf as [Hd Hf]. destruct (is_dequeue o) eqn:Ho.
  - destruct o; try done. unfold dequeues in Hc. rewrite filter_cons_True in Hc by done.
    simpl in Hc. destruct pre as [|x pre].
    + destruct (dequeue_round_robin s id post Hp Hq) as (s3 & E3 & _ & _ & Hcur).
      exists [], ops, s3. split_and!; [done|unfold dequeues; simpl; lia| |done].
      simpl. econstructor; [|constructor]. simpl. by rewrite E3.
    + destruct (dequeue_round_robin s x (pre ++ id :: post) Hp Hq) as (s3 & E3 & Q3 & C3 & _).
      simpl in He, Hlen. rewrite E3 in He. injection He as <-.
      destruct (IH (k - 1)%nat pre post) as (ops1 & ops2 & s4 & -> & L4 & R4 & C4);
        [by rewrite C3|done|lia|done|unfold dequeues; lia|].
      exists (SchedOp.Dequeue :: ops1), ops2, s4. split_and!; [done| | |done].
      * unfold dequeues in *. rewrite filter_cons_True by done. simpl. lia.
      * simpl. econstructor; [|done]. simpl. by rewrite E3.
  - destruct (exec_keeps_place id o s s1 Hp Hd Ho He) as [C1 K1].
    destruct (K1 _ _ Hq) as (pre' & post' & Q1 & L1).
    unfold dequeues in Hc. rewrite filter_cons_False in Hc by (by rewrite Ho).
    destruct (IH k pre' post') as (ops1 & ops2 & s4 & -> & L4 & R4 & C4);
      [by rewrite C1|done|lia|done|done|].
    exists (o :: ops1), ops2, s4. split_and!; [done| | |done].
    + unfold dequeues in *. rewrite filter_cons_False by (by rewrite Ho). done.
    + simpl. by econstructor.
Qed.

Lemma round_robin_no_starvation_witness :
  let ops := [SchedOp.Dequeue; SchedOp.Tick 5; SchedOp.Preempt; SchedOp.Dequeue] in
  ∃ ops1 ops2 s1, ops = ops1 ++ SchedOp.Dequeue :: ops2 ∧ (dequeues ops1 ≤ 1)%nat ∧
    run (ops1 ++ [SchedOp.Dequeue]) (sample_run 2 RealTimePolicy.None) s1 ∧
    current_task s1 = Some task_b.
Proof.
  intros ops. destruct (checked_run (λ _ _, true) ops (sample_run 2 RealTimePolicy.None))
    as [s'|] eqn:E; [|vm_compute in E; done].
  apply (round_robin_no_starvation ops _ s' task_b 1).
  - vm_compute; reflexivity.
  - vm_compute; reflexivity.
  - by apply checked_run_run.
  - repeat constructor; simpl; auto.
  - vm_compute. repeat constructor.
Defined.

(** Advancing the tick counter wakes exactly the blocked tasks that are due: a
    task blocked until [w] is runnable, and in the run queue, if [w] is not after the
    new tick, and stays blocked otherwise; no other task changes its state. *)
Theorem tick_wakes_exactly_due_tasks `{HashOrder} c d s s' i :
  reach disciplined (with_config c) s → on_tick_advanced d s = Return s' →
  match task_state i s with
  | Some (TaskState.Blocked w) =>
      if w <=? current_ticks s + d
      then task_state i s' = Some TaskState.Runnable ∧ i ∈ run_queue s'
      else task_state i s' = Some (TaskState.Blocked w) ∧ i ∉ run_queue s'
  | st => task_state i s' = st
  end.
Proof.
  intros Hr Ht. apply (reach_invariant disciplined (inv True) _ _) in Hr as Hi.
  2: apply with_config_inv.
  2: { intros s1 s2 o HO Hi [Hf Hd] He. eapply exec_inv; eauto. }
  pose proof (on_tick_advanced_inv True d s s' Ht Hi) as [[_ Hq' _] Hn'].
  pose proof (tick_current d s s' Ht) as Hcur. pose proof (tick_state d s s' i Ht) as Hst.
  destruct (task_state i s) as [[]|] eqn:Ei; try done.
  destruct (wake_tick <=? current_ticks s + d); (split; [done|]).
  - destruct (Hn' I i Hst) as [?|Hc]; [done|]. rewrite Hcur in Hc.
    destruct Hi as [[_ _ Hc'] _]. apply Hc' in Hc as [? _]. congruence.
  - intros ?%Hq'. congruence.
Qed.

Lemma tick_wakes_exactly_due_tasks_witness :
  ∃ s', @on_tick_advanced canonical_order 9 (sample_run 10 RealTimePolicy.None) = Return s' ∧
        task_state task_a s' = Some TaskState.Runnable ∧ task_a ∈ run_queue s'.
Proof.
  destruct (@on_tick_advanced canonical_order 9 (sample_run 10 RealTimePolicy.None)) as [s'| |]
    eqn:E; [|vm_compute in E; done..].
  exists s'. split; [done|].
  apply (@tick_wakes_exactly_due_tasks canonical_order (sample_config RealTimePolicy.None)
    9 (sample_run 10 RealTimePolicy.None) s' task_a (sample_run_disciplined 10 _) E).
Defined.

(** In every reachable state a tick that stays below the largest tick count
    returns: the deadline loop ends and no checked addition overflows.  Afterwards
    the tick counter has moved by exactly the delta and every real-time task's next
    deadline lies in the future. *)
Theorem tick_returns_and_refreshes `{HashOrder} c d s :
  reach fresh_ids (with_config c) s → current_ticks s + d < u64_max →
  ∃ s', on_tick_advanced d s = Return s' ∧ current_ticks s' = current_ticks s + d ∧
    ∀ id deadline, task_deadline s' id = Some deadline → current_ticks s' < deadline.
Proof.
  intros Hr Hb. assert (table_ok s) as Hok.
  { apply (reach_invariant fresh_ids table_ok (with_config c)); [apply with_config_table_ok| |done].
    intros s1 s2 o HO ? _ ?. by eapply exec_table_ok. }
  destruct (on_tick_advanced_ok d s Hok Hb) as (s' & E & Hok').
  exists s'. split; [done|]. pose proof (tick_ticks d s s' E) as Ht. split; [done|].
  intros id deadline Hd. rewrite Ht. unfold task_deadline in Hd.
  apply bind_Some in Hd as (info & Hid & (rt & Hrt & [= <-])%bind_Some).
  eapply tick_deadlines; [done..|]. by apply (Hok' id info Hid).
Qed.

Lemma tick_returns_and_refreshes_witness :
  let s := sample_run 6 RealTimePolicy.None in
  ∃ s', @on_tick_advanced canonical_order 100 s = Return s' ∧
    current_ticks s' = current_ticks s + 100 ∧
    ∀ id deadline, task_deadline s' id = Some deadline → current_ticks s' < deadline.
Proof.
  intros s. apply (@tick_returns_and_refreshes canonical_order (sample_config RealTimePolicy.None)).
  - apply sample_run_fresh.
  - vm_compute; reflexivity.
Defined.

(** At the largest tick count the deadline loop has no way out: whatever number
    of rounds it is given, it does not return, because the deadline saturates at the
    value it would have to exceed. *)
Theorem deadline_loop_stuck_at_max_tick fuel id rt log r :
  RealTimeTask.next_deadline rt ≤ u64_max →
  refresh_loop fuel id u64_max rt log ≠ Return r.
Proof. by apply refresh_loop_stuck. Qed.

Lemma deadline_loop_stuck_at_max_tick_witness :
  refresh_loop 100 task_a u64_max (RealTimeTask.new (RealTimeParams.mk 10 4) 7) [] ≠
    Return (RealTimeTask.new (RealTimeParams.mk 10 4) 17, []).
Proof. apply deadline_loop_stuck_at_max_tick. vm_compute. discriminate. Defined.

(** A task that has exited or was cancelled never runs again: through any further
    calls, other than [block_task] on that very task, it stays finished and is neither
    queued nor current. *)
Theorem finished_task_stays_finished c s s' id :
  reach fresh_ids (with_config c) s → finished id s →
  reach (λ o x, fresh_ids o x ∧ ∀ w, o ≠ SchedOp.Block id w) s s' →
  finished id s' ∧ id ∉ run_queue s' ∧ current_task s' ≠ Some id.
Proof.
  intros Hr Hf Hr'. assert (inv False s' ∧ finished id s') as [Hi Hf'].
  { revert Hr'. apply (reach_invariant _ (λ x, inv False x ∧ finished id x)).
    - split; [|done]. revert Hr. apply reach_invariant; [apply with_config_inv|].
      intros s1 s2 o HO ? ? ?. by eapply exec_inv.
    - intros s1 s2 o HO [? ?] [? ?] ?. split; [by eapply exec_inv|by eapply exec_finished]. }
  split; [done|]. apply (not_queued False); [done|].
  destruct Hf' as [-> | ->]; done.
Qed.

Lemma finished_task_stays_finished_witness :
  let s := sample_run 9 RealTimePolicy.EarliestDeadlineFirst in
  finished task_b s ∧ task_b ∉ run_queue s ∧ current_task s ≠ Some task_b.
Proof.
  intros s. apply (finished_task_stays_finished
    (sample_config RealTimePolicy.EarliestDeadlineFirst) s s task_b).
  - apply sample_run_fresh.
  - left. vm_compute; reflexivity.
  - constructor.
Defined.

(** The exception is real: [block_task] does not look at the state of the task, so
    an exited task that is blocked again is woken and selected like a live one. *)
Theorem blocked_exited_task_runs_again :
  ∃ s, checked_run disciplinedb
         [SchedOp.Enqueue task_a; SchedOp.Dequeue; SchedOp.Exit task_a;
          SchedOp.Block task_a 1; SchedOp.Tick 1; SchedOp.Dequeue] new = Some s ∧
       current_task s = Some task_a ∧ task_state task_a s = Some TaskState.Runnable.
Proof. eexists. split; [vm_compute; reflexivity|]. by split; vm_compute. Qed.

(** Admission control: in every reachable state the reported real-time utilization
    is the exact sum of the admitted shares (the 64-bit truncation never bites) and is
    at most one million parts per million. *)
Theorem utilization_never_exceeds_limit `{HashOrder} c s :
  reach fresh_ids (with_config c) s →
  real_time_utilization_ppm s = total_share s ∧ real_time_utilization_ppm s ≤ 1000000.
Proof.
  intros Hr. assert (total_share s ≤ 1000000) as Ht.
  { revert Hr. apply (reach_invariant _ (λ x, total_share x ≤ 1000000)); [done|].
    intros s1 s2 o HO ? ? ?. by eapply exec_total_share. }
  unfold real_time_utilization_ppm. rewrite total_share_iter, N.mod_small by lia. done.
Qed.

Lemma utilization_never_exceeds_limit_witness :
  let s := sample_run 3 RealTimePolicy.EarliestDeadlineFirst in
  @real_time_utilization_ppm canonical_order s = total_share s ∧
  @real_time_utilization_ppm canonical_order s ≤ 1000000.
Proof.
  intros s. apply (@utilization_never_exceeds_limit canonical_order
    (sample_config RealTimePolicy.EarliestDeadlineFirst)). apply sample_run_fresh.
Defined.
End SchedSpec.
