(* ===== verification/Smp.v ===== *)
(** * The multi-core scheduler ([sim_kernel/src/smp.rs])

    Per-core run queues with round-robin placement, per-core time, and the proof
    that a task never runs or waits on two cores. *)

From S2P Require Import Prelude CoreTypes Sched.
Open Scope N_scope.

Module CoreId.
(* sim_kernel/src/smp.rs:9-10 CoreId *)
Record t := mk { index : N }.
#[global] Instance eq_dec : EqDecision t.
Proof. solve_decision. Defined.
Definition nat_index (c : t) : nat := N.to_nat (index c).
End CoreId.

Module PerCoreTimeSources.
(* sim_kernel/src/smp.rs:13-16 PerCoreTimeSources *)
Record t := mk { ticks_of : list N }.
#[global] Instance rebuild_t : Rebuild t := λ s, mk (ticks_of s).
(* sim_kernel/src/smp.rs:19-23 PerCoreTimeSources::new *)
Definition new (core_count : N) : t := mk (replicate (N.to_nat core_count) 0).
(* sim_kernel/src/smp.rs:25-27 PerCoreTimeSources::core_count *)
Definition core_count (s : t) : N := len (ticks_of s).
(* sim_kernel/src/smp.rs:29-31 PerCoreTimeSources::ticks *)
Definition ticks (c : CoreId.t) (s : t) : outcome N := expect (ticks_of s !! CoreId.nat_index c).
(* sim_kernel/src/smp.rs:33-35 PerCoreTimeSources::advance *)
Definition advance (c : CoreId.t) (delta : N) (s : t) : outcome t :=
  now ← ticks c s;
  Return (s <| ticks_of ::= <[CoreId.nat_index c := saturating_add now delta]> |>).
End PerCoreTimeSources.

Module SmpConfig.
(* sim_kernel/src/smp.rs:39-43 SmpConfig *)
Record t := mk { core_count : N; quantum_ticks : N }.
(* sim_kernel/src/smp.rs:45-52 SmpConfig::default *)
Definition default : t := mk 2 10.
End SmpConfig.

Module CoreScheduleEvent.
(* sim_kernel/src/smp.rs:55-74 CoreScheduleEvent *)
Inductive t :=
| TaskSelected (core_id : CoreId.t) (task_id : TaskId.t) (timestamp_ticks : N)
| TaskPreempted (core_id : CoreId.t) (task_id : TaskId.t) (reason : PreemptionReason.t)
    (timestamp_ticks : N)
| TaskExited (core_id : CoreId.t) (task_id : TaskId.t) (reason : SchedExitReason.t)
    (timestamp_ticks : N).
End CoreScheduleEvent.

Module CoreState.
(* sim_kernel/src/smp.rs:76-81 CoreState *)
Record t := mk {
  run_queue : list TaskId.t;
  current_task : option TaskId.t;
  ticks_in_quantum : N
}.
#[global] Instance rebuild_t : Rebuild t := λ c,
  mk (run_queue c) (current_task c) (ticks_in_quantum c).
(* sim_kernel/src/smp.rs:84-90 CoreState::new *)
Definition new : t := mk [] None 0.
End CoreState.

Module MultiCoreScheduler.
(** The task table maps a task to its state, which is [Runnable] throughout. *)
(* sim_kernel/src/smp.rs:93-105 MultiCoreScheduler *)
Record t := mk {
  config : SmpConfig.t;
  cores : list CoreState.t;
  tasks : gmap TaskId.t TaskState.t;
  next_core : N;
  audit_log : list CoreScheduleEvent.t
}.
#[global] Instance rebuild_t : Rebuild t := λ s,
  mk (config s) (cores s) (tasks s) (next_core s) (audit_log s).

(* sim_kernel/src/smp.rs:108-120 MultiCoreScheduler::new *)
Definition new (c : SmpConfig.t) : t :=
  mk c (replicate (N.to_nat (SmpConfig.core_count c)) CoreState.new) ∅ 0 [].

(** [self.cores[core_id.0]]: an index out of range panics. *)
Definition core (c : CoreId.t) (s : t) : outcome CoreState.t :=
  expect (cores s !! CoreId.nat_index c).
Definition set_core (c : CoreId.t) (x : CoreState.t) (s : t) : t :=
  s <| cores ::= <[CoreId.nat_index c := x]> |>.
Definition push_event (e : CoreScheduleEvent.t) (s : t) : t :=
  s <| audit_log ::= λ l, l ++ [e] |>.

(* sim_kernel/src/smp.rs:122-124 MultiCoreScheduler::core_count *)
Definition core_count (s : t) : N := len (cores s).
(* sim_kernel/src/smp.rs:126-128 MultiCoreScheduler::core_current_task *)
Definition core_current_task (c : CoreId.t) (s : t) : outcome (option TaskId.t) :=
  x ← core c s; Return (CoreState.current_task x).
(* sim_kernel/src/smp.rs:130-132 MultiCoreScheduler::core_has_runnable *)
Definition core_has_runnable (c : CoreId.t) (s : t) : outcome bool :=
  x ← core c s; Return (negb (bool_decide (CoreState.run_queue x = []))).
(* sim_kernel/src/smp.rs:134-138 MultiCoreScheduler::has_runnable_tasks *)
Definition has_runnable_tasks (s : t) : bool :=
  existsb (λ x, bool_decide (is_Some (CoreState.current_task x))
                || negb (bool_decide (CoreState.run_queue x = []))) (cores s).

(** [% self.cores.len()] panics when there is no core. *)
(* sim_kernel/src/smp.rs:140-148 MultiCoreScheduler::enqueue *)
Definition enqueue (id : TaskId.t) (s : t) : outcome t :=
  let s := s <| tasks ::= <[id := TaskState.Runnable]> |> in
  if len (cores s) =? 0 then Panic
  else
    let core_idx := CoreId.mk (next_core s mod len (cores s)) in
    next ← add_u64 (next_core s) 1;
    let s := s <| next_core := next |> in
    x ← core core_idx s;
    Return (set_core core_idx (x <| CoreState.run_queue ::= λ q, q ++ [id] |>) s).

(* sim_kernel/src/smp.rs:150-161 MultiCoreScheduler::dequeue_next *)
Definition dequeue_next (c : CoreId.t) (timestamp_ticks : N) (s : t)
    : outcome (option TaskId.t * t) :=
  x ← core c s;
  match CoreState.run_queue x with
  | [] => Return (None, s)
  | id :: q =>
      let x := x <| CoreState.run_queue := q |> <| CoreState.current_task := Some id |>
                 <| CoreState.ticks_in_quantum := 0 |> in
      Return (Some id, push_event (CoreScheduleEvent.TaskSelected c id timestamp_ticks)
                         (set_core c x s))
  end.

(* sim_kernel/src/smp.rs:163-168 MultiCoreScheduler::on_tick_advanced *)
Definition on_tick_advanced (c : CoreId.t) (delta : N) (s : t) : outcome t :=
  x ← core c s;
  match CoreState.current_task x with
  | Some _ =>
      Return (set_core c (x <| CoreState.ticks_in_quantum ::= λ n, saturating_add n delta |>) s)
  | None => Return s
  end.

(* sim_kernel/src/smp.rs:170-173 MultiCoreScheduler::should_preempt *)
Definition should_preempt (c : CoreId.t) (s : t) : outcome bool :=
  x ← core c s;
  Return ((SmpConfig.quantum_ticks (config s) <=? CoreState.ticks_in_quantum x)
          && bool_decide (is_Some (CoreState.current_task x))).

(* sim_kernel/src/smp.rs:175-192 MultiCoreScheduler::preempt_current *)
Definition preempt_current (c : CoreId.t) (reason : PreemptionReason.t) (timestamp_ticks : N)
    (s : t) : outcome t :=
  x ← core c s;
  match CoreState.current_task x with
  | Some id =>
      let x := x <| CoreState.current_task := None |> <| CoreState.ticks_in_quantum := 0 |>
                 <| CoreState.run_queue ::= λ q, q ++ [id] |> in
      Return (set_core c x
        (push_event (CoreScheduleEvent.TaskPreempted c id reason timestamp_ticks) s))
  | None => Return s
  end.

(** A core without [id]: neither queued nor current. *)
Definition purge (id : TaskId.t) (x : CoreState.t) : CoreState.t :=
  let x := x <| CoreState.run_queue ::= filter (λ i, i ≠ id) |> in
  if bool_decide (CoreState.current_task x = Some id)
  then x <| CoreState.current_task := None |> else x.

(* sim_kernel/src/smp.rs:194-213 MultiCoreScheduler::exit_task *)
Definition exit_task (c : CoreId.t) (id : TaskId.t) (reason : SchedExitReason.t)
    (timestamp_ticks : N) (s : t) : outcome t :=
  let s := s <| tasks ::= delete id |> in
  x ← core c s;
  Return (push_event (CoreScheduleEvent.TaskExited c id reason timestamp_ticks)
            (set_core c (purge id x) s)).

(** One round of the loop over the cores: a core where [id] is current overrides
    what was found before, a core that only queues it does not. *)
(* sim_kernel/src/smp.rs:223-233 MultiCoreScheduler::exit_task_any *)
Fixpoint sweep (id : TaskId.t) (idx : N) (found : option CoreId.t) (l : list CoreState.t)
    : option CoreId.t * list CoreState.t :=
  match l with
  | [] => (found, [])
  | x :: l' =>
      let '(x, found) :=
        if bool_decide (CoreState.current_task x = Some id)
        then (x <| CoreState.current_task := None |>, Some (CoreId.mk idx))
        else (x, found) in
      let before := length (CoreState.run_queue x) in
      let x := x <| CoreState.run_queue ::= filter (λ i, i ≠ id) |> in
      let found :=
        if negb (bool_decide (before = length (CoreState.run_queue x)))
           && bool_decide (found = None)
        then Some (CoreId.mk idx) else found in
      let '(found, rest) := sweep id (idx + 1) found l' in
      (found, x :: rest)
  end.
(* sim_kernel/src/smp.rs:215-250 MultiCoreScheduler::exit_task_any *)
Definition exit_task_any (id : TaskId.t) (reason : SchedExitReason.t) (timestamp_ticks : N)
    (s : t) : bool * t :=
  let '(found_core, cs) := sweep id 0 None (cores s) in
  let s := s <| cores := cs |> in
  let s := if bool_decide (is_Some found_core) then s <| tasks ::= delete id |> else s in
  match found_core with
  | Some c => (true, push_event (CoreScheduleEvent.TaskExited c id reason timestamp_ticks) s)
  | None => (false, s)
  end.
(* sim_kernel/src/smp.rs:252-254 MultiCoreScheduler::cancel_task_any *)
Definition cancel_task_any (id : TaskId.t) (timestamp_ticks : N) (s : t) : bool * t :=
  exit_task_any id SchedExitReason.ResourceExhaustion timestamp_ticks s.
End MultiCoreScheduler.

Module SmpRuntime.
(* sim_kernel/src/smp.rs:262-265 SmpRuntime *)
Record t := mk { scheduler : MultiCoreScheduler.t; time : PerCoreTimeSources.t }.
#[global] Instance rebuild_t : Rebuild t := λ r, mk (scheduler r) (time r).
(* sim_kernel/src/smp.rs:268-272 SmpRuntime::new *)
Definition new (c : SmpConfig.t) : t :=
  mk (MultiCoreScheduler.new c) (PerCoreTimeSources.new (SmpConfig.core_count c)).
(* sim_kernel/src/smp.rs:274-277 SmpRuntime::advance_core_time *)
Definition advance_core_time (c : CoreId.t) (ticks : N) (r : t) : outcome t :=
  tm ← PerCoreTimeSources.advance c ticks (time r);
  sc ← MultiCoreScheduler.on_tick_advanced c ticks (scheduler r);
  Return (mk sc tm).
End SmpRuntime.

(** ** Properties *)
Import MultiCoreScheduler.
Implicit Types (s : MultiCoreScheduler.t) (id : TaskId.t) (c : CoreId.t).

Module SmpOp.
Inductive t :=
| Enqueue (id : TaskId.t)
| Dequeue (c : CoreId.t) (now : N)
| Tick (c : CoreId.t) (delta : N)
| Preempt (c : CoreId.t) (reason : PreemptionReason.t) (now : N)
| Exit (c : CoreId.t) (id : TaskId.t) (reason : SchedExitReason.t) (now : N)
| ExitAny (id : TaskId.t) (reason : SchedExitReason.t) (now : N)
| CancelAny (id : TaskId.t) (now : N).

Definition exec (o : t) (s : MultiCoreScheduler.t) : outcome MultiCoreScheduler.t :=
  match o with
  | Enqueue id => enqueue id s
  | Dequeue c now => r ← dequeue_next c now s; Return r.2
  | Tick c delta => on_tick_advanced c delta s
  | Preempt c reason now => preempt_current c reason now s
  | Exit c id reason now => exit_task c id reason now s
  | ExitAny id reason now => Return (exit_task_any id reason now s).2
  | CancelAny id now => Return (cancel_task_any id now s).2
  end.
End SmpOp.

(** The tasks on a core, the running one first, and on all cores. *)
Definition occupants (x : CoreState.t) : list TaskId.t :=
  option_list (CoreState.current_task x) ++ CoreState.run_queue x.
Definition all_tasks (s : MultiCoreScheduler.t) : list TaskId.t := concat (occupants <$> cores s).

(** Calls a client may make: identifiers are new, a core selects only when idle, and
    [exit_task] names the core the task is on. *)
Definition smp_disciplined (o : SmpOp.t) (s : MultiCoreScheduler.t) : Prop :=
  match o with
  | SmpOp.Enqueue id => tasks s !! id = None
  | SmpOp.Dequeue c _ => core_current_task c s = Return None
  | SmpOp.Exit c id _ _ => ∀ x, core c s = Return x → id ∈ occupants x
  | _ => True
  end.

Inductive smp_reach (s : MultiCoreScheduler.t) : MultiCoreScheduler.t → Prop :=
| smp_reach_refl : smp_reach s s
| smp_reach_step s1 s2 o :
    smp_reach s s1 → smp_disciplined o s1 → SmpOp.exec o s1 = Return s2 → smp_reach s s2.

(** The cores hold exactly the tasks of the table, each of them once. *)
Definition smp_wf (s : MultiCoreScheduler.t) : Prop :=
  NoDup (all_tasks s) ∧ ∀ id, id ∈ all_tasks s ↔ is_Some (tasks s !! id).

(** A core in focus: the others contribute a fixed [rest]. *)
Lemma core_focus c s x :
  core c s = Return x →
  ∃ rest, all_tasks s ≡ₚ occupants x ++ rest ∧
          ∀ x' s', cores s' = cores (set_core c x' s) → all_tasks s' ≡ₚ occupants x' ++ rest.
Proof.
  unfold core. destruct (cores s !! CoreId.nat_index c) as [y|] eqn:E; [|done].
  intros [= ->]. apply list_elem_of_split_length in E as (pre & post & Es & El).
  exists (concat (occupants <$> pre) ++ concat (occupants <$> post)).
  assert (∀ y, concat (occupants <$> pre ++ y :: post) ≡ₚ
    occupants y ++ concat (occupants <$> pre) ++ concat (occupants <$> post)) as Hy.
  { intros y. rewrite fmap_app, fmap_cons, concat_app. simpl.
    by rewrite !(assoc_L (++)), (comm (++) (concat _) (occupants y)). }
  split.
  - unfold all_tasks. rewrite Es. apply Hy.
  - intros x' s' Hs'. unfold all_tasks. rewrite Hs'. unfold set_core. simpl.
    rewrite Es, El, insert_app_r_alt, Nat.sub_diag by lia. apply Hy.
Qed.

Lemma smp_wf_perm s s' :
  all_tasks s' ≡ₚ all_tasks s → tasks s' = tasks s → smp_wf s → smp_wf s'.
Proof. intros Hp Ht [Hnd Hi]. split; [by rewrite Hp|]. intros id. by rewrite Hp, Ht. Qed.

Lemma purge_occupants id x : occupants (purge id x) = filter (λ i, i ≠ id) (occupants x).
Proof.
  unfold purge, occupants. simpl. rewrite filter_app.
  destruct (CoreState.current_task x) as [i|] eqn:E; simpl; [|by rewrite E].
  case_bool_decide as Hi; simpl.
  - injection Hi as ->. rewrite filter_cons_False by (intros Hn; by apply Hn). done.
  - rewrite filter_cons_True by congruence. by rewrite E.
Qed.

Lemma smp_enqueue_wf id s s' :
  tasks s !! id = None → enqueue id s = Return s' → smp_wf s → smp_wf s'.
Proof.
  unfold enqueue. intros Hf. destruct (len _ =? 0); [done|].
  intros (n & _ & (x & Hx & [= <-])%bind_Return)%bind_Return [Hnd Hi].
  destruct (core_focus _ s x Hx) as (rest & H1 & H2).
  match goal with |- smp_wf ?t => assert (all_tasks t ≡ₚ id :: all_tasks s) as Hp end.
  { rewrite (H2 (x <| CoreState.run_queue ::= λ q, q ++ [id] |>)) by done.
    rewrite H1. unfold occupants. simpl. rewrite !app_assoc. by rewrite <- (Permutation_cons_append). }
  split.
  - rewrite Hp. apply NoDup_cons. split; [|done]. rewrite Hi, Hf. by intros [??].
  - intros i. rewrite Hp, elem_of_cons, Hi. simpl. rewrite lookup_insert.
    case_decide; naive_solver.
Qed.

Lemma smp_dequeue_wf c now s r :
  core_current_task c s = Return None → dequeue_next c now s = Return r → smp_wf s → smp_wf r.2.
Proof.
  unfold core_current_task, dequeue_next.
  intros (x & Hx & [= Hc])%bind_Return (y & Hy & Hr)%bind_Return.
  rewrite Hx in Hy. injection Hy as <-.
  destruct (CoreState.run_queue x) as [|id q] eqn:Eq; injection Hr as <-; [done|].
  destruct (core_focus _ s x Hx) as (rest & H1 & H2). apply smp_wf_perm; [|done]. simpl.
  erewrite H2 by reflexivity. rewrite H1. unfold occupants. simpl. by rewrite Hc, Eq.
Qed.

Lemma smp_tick_wf c d s s' : on_tick_advanced c d s = Return s' → smp_wf s → smp_wf s'.
Proof.
  unfold on_tick_advanced. intros (x & Hx & Hr)%bind_Return.
  destruct (CoreState.current_task x) as [i|] eqn:Ec; injection Hr as <-; [|done].
  destruct (core_focus _ s x Hx) as (rest & H1 & H2). apply smp_wf_perm; [|done].
  erewrite H2 by reflexivity. rewrite H1. unfold occupants. simpl. by rewrite Ec.
Qed.

Lemma smp_preempt_wf c reason now s s' :
  preempt_current c reason now s = Return s' → smp_wf s → smp_wf s'.
Proof.
  unfold preempt_current. intros (x & Hx & Hr)%bind_Return.
  destruct (CoreState.current_task x) as [i|] eqn:Ec; injection Hr as <-; [|done].
  destruct (core_focus _ s x Hx) as (rest & H1 & H2). apply smp_wf_perm; [|done].
  erewrite H2 by reflexivity. rewrite H1. unfold occupants. simpl. rewrite Ec. simpl.
  by rewrite <- Permutation_cons_append.
Qed.

Lemma not_elem_of_filter_ne id (l : list TaskId.t) : id ∉ l → filter (λ i, i ≠ id) l = l.
Proof.
  intros Hn. induction l as [|x l IH]; [done|]. apply not_elem_of_cons in Hn as [? ?].
  rewrite filter_cons_True by done. by rewrite IH.
Qed.

Lemma smp_remove_wf id s s' :
  all_tasks s' ≡ₚ filter (λ i, i ≠ id) (all_tasks s) → tasks s' = delete id (tasks s) →
  smp_wf s → smp_wf s'.
Proof.
  intros Hp Ht [Hnd Hi]. split; [rewrite Hp; by apply NoDup_filter|].
  intros i. rewrite Hp, list_elem_of_filter, Hi, Ht, lookup_delete. case_decide; naive_solver.
Qed.

Lemma smp_exit_wf c id reason now s s' :
  (∀ x, core c s = Return x → id ∈ occupants x) →
  exit_task c id reason now s = Return s' → smp_wf s → smp_wf s'.
Proof.
  unfold exit_task. intros Hin (x & Hx & [= <-])%bind_Return Hw.
  change (core c s = Return x) in Hx.
  destruct (core_focus _ s x Hx) as (rest & H1 & H2). specialize (Hin x Hx).
  apply (smp_remove_wf id s); [|done|done].
  erewrite (H2 (purge id x)) by reflexivity. rewrite purge_occupants.
  destruct Hw as [Hnd _]. rewrite H1 in Hnd. apply NoDup_app in Hnd as (_ & Hdis & _).
  rewrite H1, filter_app, (not_elem_of_filter_ne id rest); [done|by apply Hdis].
Qed.

(** What the sweep over the cores does and finds. *)
Lemma sweep_cores id idx found l :
  (sweep id idx found l).2 = purge id <$> l.
Proof.
  revert idx found. induction l as [|x l IH]; intros idx found; simpl; [done|].
  unfold purge. simpl. case_bool_decide;
    match goal with |- context [sweep id ?i ?f l] =>
      specialize (IH i f); destruct (sweep id i f l) as [f' rest] end; simpl in *; by rewrite IH.
Qed.

Lemma filter_ne_length id (l : list TaskId.t) :
  length l = length (filter (λ i, i ≠ id) l) ↔ id ∉ l.
Proof.
  split; [|intros Hn; by rewrite not_elem_of_filter_ne].
  induction l as [|x l IH]; [intros _ ?%not_elem_of_nil; done|].
  destruct (decide (x = id)) as [->|Hne].
  - rewrite filter_cons_False by (intros Hn; by apply Hn). simpl.
    pose proof (length_filter (λ i, i ≠ id) l). lia.
  - rewrite filter_cons_True by done. simpl. intros [= ?%IH]. by apply not_elem_of_cons.
Qed.

Lemma elem_of_option_list id (o : option TaskId.t) : id ∈ option_list o ↔ o = Some id.
Proof. destruct o; simpl; [rewrite list_elem_of_singleton|rewrite elem_of_nil]; naive_solver. Qed.

Lemma sweep_found id idx found l :
  is_Some (sweep id idx found l).1 ↔ is_Some found ∨ id ∈ concat (occupants <$> l).
Proof.
  revert idx found. induction l as [|x l IH]; intros idx found; simpl.
  { rewrite elem_of_nil. naive_solver. }
  rewrite elem_of_app. unfold occupants at 1. rewrite elem_of_app, elem_of_option_list.
  pose proof (filter_ne_length id (CoreState.run_queue x)) as Hl.
  case_bool_decide as Hc; simpl;
    match goal with |- context [sweep id ?i ?f l] =>
      specialize (IH i f); destruct (sweep id i f l) as [f' rest] end; simpl in *; rewrite IH.
  - rewrite andb_false_r. naive_solver.
  - assert (bool_decide (length (CoreState.run_queue x)
      = length (filter (λ i, i ≠ id) (CoreState.run_queue x)))
      = bool_decide (id ∉ CoreState.run_queue x)) as -> by by apply bool_decide_ext.
    destruct (decide (id ∈ CoreState.run_queue x)) as [Hq|Hq].
    + rewrite (bool_decide_false (id ∉ _)) by (intros Hn; by apply Hn).
      destruct found; simpl; split; eauto.
    + rewrite (bool_decide_true (id ∉ _)) by done. simpl. clear IH Hl.
      split; [naive_solver|]. intros [?|[[?|?]|?]]; naive_solver.
Qed.

Lemma exit_any_tasks id reason now s :
  all_tasks (exit_task_any id reason now s).2 = filter (λ i, i ≠ id) (all_tasks s).
Proof.
  unfold exit_task_any. pose proof (sweep_cores id 0 None (cores s)) as Hs.
  destruct (sweep id 0 None (cores s)) as [f cs]. simpl in Hs. subst cs.
  assert (concat (occupants <$> (purge id <$> cores s)) = filter (λ i, i ≠ id) (all_tasks s)) as E.
  { unfold all_tasks. induction (cores s) as [|x l IH]; [done|].
    rewrite !fmap_cons. simpl. rewrite filter_app, purge_occupants. f_equal. exact IH. }
  case_bool_decide; destruct f; done.
Qed.

Lemma smp_exit_any_wf id reason now s :
  smp_wf s → smp_wf (exit_task_any id reason now s).2.
Proof.
  intros Hw. pose proof (exit_any_tasks id reason now s) as Ha.
  pose proof (sweep_found id 0 None (cores s)) as Hf.
  apply (smp_remove_wf id s); [by rewrite Ha| |done].
  unfold exit_task_any. destruct (sweep id 0 None (cores s)) as [f cs]. simpl in *.
  destruct f as [x|]; [done|]. simpl. symmetry. apply delete_id.
  destruct Hw as [_ Hi]. apply eq_None_not_Some. rewrite <- Hi. naive_solver.
Qed.

Lemma smp_exec_wf o s s' :
  smp_disciplined o s → SmpOp.exec o s = Return s' → smp_wf s → smp_wf s'.
Proof.
  intros Hd He Hw. destruct o; simpl in *.
  - by eapply smp_enqueue_wf.
  - apply bind_Return in He as (r & Hr & [= <-]). by eapply smp_dequeue_wf.
  - by eapply smp_tick_wf.
  - by eapply smp_preempt_wf.
  - by eapply smp_exit_wf.
  - injection He as <-. by apply smp_exit_any_wf.
  - injection He as <-. by apply smp_exit_any_wf.
Qed.

Lemma smp_new_wf cfg : smp_wf (MultiCoreScheduler.new cfg).
Proof.
  assert (all_tasks (MultiCoreScheduler.new cfg) = []) as E.
  { unfold all_tasks; simpl. by induction (N.to_nat (SmpConfig.core_count cfg)). }
  split; rewrite E; [by apply NoDup_nil|]. intros id. simpl.
  rewrite lookup_empty, elem_of_nil. split; [done|by intros [??]].
Qed.

(** ** Placement *)

(** After [n] placements over [k] cores, core [i] has received this many tasks. *)
Definition placed (n k i : N) : N := (n + (k - 1 - i)) / k.

Lemma placed_step n k i :
  i < k → placed (n + 1) k i = placed n k i + (if n mod k =? i then 1 else 0).
Proof.
  intros Hi. unfold placed. pose proof (N.div_mod n k ltac:(lia)) as Hn.
  pose proof (N.mod_lt n k ltac:(lia)) as Hr.
  set (q := n / k) in *. set (r := n mod k) in *. rewrite Hn.
  replace (k * q + r + 1 + (k - 1 - i)) with (r + 1 + (k - 1 - i) + q * k) by lia.
  replace (k * q + r + (k - 1 - i)) with (r + (k - 1 - i) + q * k) by lia.
  rewrite !N.div_add by lia. destruct (N.eqb_spec r i) as [->|Hne].
  - replace (i + 1 + (k - 1 - i)) with (1 * k) by lia.
    rewrite N.div_mul, (N.div_small (i + (k - 1 - i))) by lia. lia.
  - destruct (decide (r < i)).
    + rewrite !N.div_small by lia. lia.
    + assert (∀ x, r + x + (k - 1 - i) = (r + x - 1 - i) + 1 * k) as E.
      { intros x. lia. }
      rewrite (E 1). replace (r + (k - 1 - i)) with (r + 0 + (k - 1 - i)) by lia.
      rewrite (E 0), !N.div_add, !N.div_small by lia. lia.
Qed.

(** The placement invariant after [n] calls of [enqueue] on a new scheduler. *)
Definition placement_inv (k n : N) (s : MultiCoreScheduler.t) : Prop :=
  next_core s = n ∧ len (cores s) = k ∧
  ∀ i x, cores s !! i = Some x →
    len (CoreState.run_queue x) = placed n k (N.of_nat i).

Lemma enqueue_placement k n id s :
  0 < k → n + 1 ≤ u64_max → placement_inv k n s →
  ∃ s', enqueue id s = Return s' ∧ placement_inv k (n + 1) s'.
Proof.
  intros Hk Hn (Hnc & Hlen & Hq). unfold enqueue. simpl.
  rewrite Hlen, Hnc. destruct (N.eqb_spec k 0); [lia|].
  assert (add_u64 n 1 = Return (n + 1)) as -> by (by apply add_u64_Return).
  simpl. unfold core, CoreId.nat_index. simpl.
  pose proof (N.mod_lt n k ltac:(lia)) as Hr.
  destruct (lookup_lt_is_Some_2 (cores s) (N.to_nat (n mod k))) as [x Hx].
  { unfold len in Hlen. lia. }
  rewrite Hx. simpl. eexists. split; [done|]. split_and!; simpl; [done| |].
  - unfold len in *. by rewrite length_insert.
  - intros i y. rewrite list_lookup_insert_Some.
    intros [(<- & <- & _)|(Hne & Hy)]; simpl.
    + unfold len. rewrite length_app, Nat2N.inj_add. fold (len (CoreState.run_queue x)).
      unfold CoreId.nat_index; simpl.
      rewrite (Hq _ _ Hx), N2Nat.id, (placed_step _ _ _ Hr). by rewrite N.eqb_refl.
    + rewrite (Hq _ _ Hy), placed_step.
      * unfold CoreId.nat_index in Hne; simpl in Hne.
        destruct (N.eqb_spec (n mod k) (N.of_nat i)) as [E|]; [|lia].
        rewrite E, Nat2N.id in Hne. done.
      * apply lookup_lt_Some in Hy. unfold len in Hlen. lia.
Qed.

Lemma new_placement cfg : placement_inv (SmpConfig.core_count cfg) 0 (MultiCoreScheduler.new cfg).
Proof.
  split_and!; simpl; [done|unfold len; rewrite length_replicate; lia|].
  intros i x (-> & Hi)%lookup_replicate. unfold placed. simpl.
  rewrite N.div_small; [done|lia].
Qed.

Lemma enqueue_all_placement k ids n s :
  0 < k → n + len ids ≤ u64_max → placement_inv k n s →
  ∃ s', fold_outcome (λ s id, enqueue id s) ids s = Return s' ∧ placement_inv k (n + len ids) s'.
Proof.
  intros Hk. revert n s. induction ids as [|id ids IH]; intros n s Hn Hi; simpl.
  { exists s. unfold len. simpl. by rewrite N.add_0_r. }
  unfold len in *. simpl length in *. rewrite Nat2N.inj_succ in *.
  destruct (enqueue_placement k n id s) as (s1 & E1 & Hi1); [done|lia|done|].
  rewrite E1. simpl. destruct (IH (n + 1) s1) as (s' & E' & Hi'); [lia|done|].
  exists s'. split; [done|]. by replace (n + N.succ (N.of_nat (length ids)))
    with (n + 1 + N.of_nat (length ids)) by lia.
Qed.

Lemma placed_close n k i j : i < k → j < k → placed n k i ≤ placed n k j + 1.
Proof.
  intros Hi Hj. unfold placed. rewrite <- N.div_add with (b := 1) by lia.
  apply N.Div0.div_le_mono. lia.
Qed.

Module SmpSpec.
(** However the multi-core scheduler is driven (new identifiers, idle cores
    selecting, [exit_task] naming the right core), the cores together hold exactly the
    tasks of the task table and each of them once: no task is on two cores, none is
    lost, none survives its exit. *)
Theorem smp_tasks_on_exactly_one_core cfg s :
  smp_reach (MultiCoreScheduler.new cfg) s → smp_wf s.
Proof.
  induction 1 as [|s1 s2 o _ IH Hd He]; [apply smp_new_wf|]. by eapply smp_exec_wf.
Qed.

Definition sample_smp : MultiCoreScheduler.t :=
  MultiCoreScheduler.new (SmpConfig.mk 2 5).

Lemma smp_tasks_on_exactly_one_core_witness :
  ∃ s, (s1 ← enqueue (TaskId.mk 1) sample_smp; s2 ← enqueue (TaskId.mk 2) s1;
        r ← dequeue_next (CoreId.mk 1) 7 s2; Return r.2) = Return s ∧ smp_wf s.
Proof.
  destruct (enqueue (TaskId.mk 1) sample_smp) as [s1| |] eqn:E1; [|vm_compute in E1; done..].
  destruct (enqueue (TaskId.mk 2) s1) as [s2| |] eqn:E2;
    [|vm_compute in E1; simplify_eq; vm_compute in E2; done..].
  destruct (dequeue_next (CoreId.mk 1) 7 s2) as [[o s3]| |] eqn:E3;
    [|vm_compute in E1; simplify_eq; vm_compute in E2; simplify_eq; vm_compute in E3; done..].
  exists s3. cbn [mbind outcome_bind]. rewrite E2. cbn [mbind outcome_bind]. rewrite E3.
  split; [done|].
  apply (smp_tasks_on_exactly_one_core (SmpConfig.mk 2 5)).
  apply (smp_reach_step _ s2 s3 (SmpOp.Dequeue (CoreId.mk 1) 7));
    [|vm_compute in E1; simplify_eq; vm_compute in E2; simplify_eq; by vm_compute
     |by simpl; rewrite E3].
  apply (smp_reach_step _ s1 s2 (SmpOp.Enqueue (TaskId.mk 2)));
    [|vm_compute in E1; simplify_eq; by vm_compute|done].
  apply (smp_reach_step _ sample_smp s1 (SmpOp.Enqueue (TaskId.mk 1))); [constructor|done|done].
Defined.

(** [exit_task_any] reports whether the task was anywhere, and afterwards it is on
    no core, while every other task is where it was. *)
Theorem exit_any_removes_everywhere id reason now s :
  let r := exit_task_any id reason now s in
  (r.1 = true ↔ id ∈ all_tasks s) ∧
  all_tasks r.2 = filter (λ i, i ≠ id) (all_tasks s) ∧
  cores r.2 = purge id <$> cores s.
Proof.
  simpl. split_and!.
  - pose proof (sweep_found id 0 None (cores s)) as Hf. unfold exit_task_any.
    destruct (sweep id 0 None (cores s)) as [[x|] cs]; simpl in *.
    + split; [|done]. intros _. destruct (proj1 Hf) as [[? ?]|?]; [eauto|done|done].
    + split; [done|]. intros Hin. destruct (proj2 Hf) as [? ?]; [by right|done].
  - apply exit_any_tasks.
  - unfold exit_task_any. pose proof (sweep_cores id 0 None (cores s)) as Hs.
    destruct (sweep id 0 None (cores s)) as [[x|] cs]; done.
Qed.

(** Round-robin placement is balanced: after any number of tasks has been enqueued
    on a new scheduler with at least one core, the queue lengths of two cores differ
    by at most one, and no call panicked. *)
Theorem placement_is_balanced cfg ids :
  0 < SmpConfig.core_count cfg → len ids ≤ u64_max →
  ∃ s, fold_outcome (λ s id, enqueue id s) ids (MultiCoreScheduler.new cfg) = Return s ∧
    ∀ i j x y, cores s !! i = Some x → cores s !! j = Some y →
      len (CoreState.run_queue x) ≤ len (CoreState.run_queue y) + 1.
Proof.
  intros Hk Hn. destruct (enqueue_all_placement _ ids 0 _ Hk Hn (new_placement cfg))
    as (s & E & _ & Hl & Hq).
  exists s. split; [done|]. intros i j x y Hi Hj. rewrite (Hq _ _ Hi), (Hq _ _ Hj).
  apply lookup_lt_Some in Hi, Hj. unfold len in Hl. apply placed_close; lia.
Qed.

Lemma placement_is_balanced_witness :
  ∃ s, fold_outcome (λ s id, enqueue id s) (TaskId.mk <$> [1; 2; 3; 4; 5]) sample_smp = Return s ∧
    ∀ i j x y, cores s !! i = Some x → cores s !! j = Some y →
      len (CoreState.run_queue x) ≤ len (CoreState.run_queue y) + 1.
Proof. apply placement_is_balanced; vm_compute; done. Defined.
End SmpSpec.
