(* ===== verification/AddrSpace.v ===== *)
(** * Address spaces ([sim_kernel/src/address_space.rs], [page_table_bridge.rs])

    The address-space manager with its capability tables, the bridge to page
    tables, and the isolation theorems: the capabilities of a space belong to the execution
    it was created for. *)

From S2P Require Import Prelude CoreTypes.
Open Scope N_scope.

(** [std::collections::hash_map::DefaultHasher], whose algorithm the standard
    library leaves unspecified: the 64-bit hash of an identifier is a parameter. *)
Class DefaultHasher := {
  hash_space : AddressSpaceId.t → N;
  hash_region : MemoryRegionId.t → N
}.
Definition sample_hasher : DefaultHasher :=
  {| hash_space i := AddressSpaceId.uuid i mod 2 ^ 64;
     hash_region i := MemoryRegionId.uuid i mod 2 ^ 64 |}.

Module PageTableMode.
(* sim_kernel/src/page_table_bridge.rs:24-30 PageTableMode *)
Inductive t := Simulation | Hardware.
#[global] Instance eq_dec : EqDecision t.
Proof. solve_decision. Defined.
End PageTableMode.

Module PageTableBridge.
(* sim_kernel/src/page_table_bridge.rs:36-41 PageTableBridge *)
Record t := mk { mode : PageTableMode.t; space_handles : gmap AddressSpaceId.t N }.
#[global] Instance rebuild_t : Rebuild t := λ b, mk (mode b) (space_handles b).
(* sim_kernel/src/page_table_bridge.rs:45-50 PageTableBridge::new *)
Definition new (m : PageTableMode.t) : t := mk m ∅.
(* sim_kernel/src/page_table_bridge.rs:53-72 PageTableBridge::create_page_table *)
Definition create_page_table `{DefaultHasher} (space_id : AddressSpaceId.t) (b : t)
    : result unit MemoryError.t * t :=
  match mode b with
  | PageTableMode.Simulation => (Ok tt, b)
  | PageTableMode.Hardware =>
      (Ok tt, b <| space_handles ::= <[space_id := hash_space space_id]> |>)
  end.
(* sim_kernel/src/page_table_bridge.rs:75-102 PageTableBridge::map_region *)
Definition map_region (space_id : AddressSpaceId.t) (region_id : MemoryRegionId.t)
    (virtual_base size_bytes : N) (perms : MemoryPerms.t) (b : t)
    : result unit MemoryError.t * t :=
  match mode b with
  | PageTableMode.Simulation => (Ok tt, b)
  | PageTableMode.Hardware =>
      if bool_decide (is_Some (space_handles b !! space_id)) then (Ok tt, b)
      else (Err (MemoryError.AddressSpaceNotFound space_id), b)
  end.
(* sim_kernel/src/page_table_bridge.rs:105-128 PageTableBridge::unmap_region *)
Definition unmap_region (space_id : AddressSpaceId.t) (region_id : MemoryRegionId.t) (b : t)
    : result unit MemoryError.t * t :=
  match mode b with
  | PageTableMode.Simulation => (Ok tt, b)
  | PageTableMode.Hardware =>
      if bool_decide (is_Some (space_handles b !! space_id)) then (Ok tt, b)
      else (Err (MemoryError.AddressSpaceNotFound space_id), b)
  end.
(* sim_kernel/src/page_table_bridge.rs:131-145 PageTableBridge::destroy_page_table *)
Definition destroy_page_table (space_id : AddressSpaceId.t) (b : t)
    : result unit MemoryError.t * t :=
  match mode b with
  | PageTableMode.Simulation => (Ok tt, b)
  | PageTableMode.Hardware => (Ok tt, b <| space_handles ::= delete space_id |>)
  end.
(* sim_kernel/src/page_table_bridge.rs:148-153 PageTableBridge::get_cr3 *)
Definition get_cr3 (space_id : AddressSpaceId.t) (b : t) : option N :=
  match mode b with
  | PageTableMode.Simulation => None
  | PageTableMode.Hardware => space_handles b !! space_id
  end.
End PageTableBridge.

Module AddressSpaceEvent.
(* sim_kernel/src/address_space.rs:15-56 AddressSpaceEvent *)
Inductive t :=
| SpaceCreated (space_id : AddressSpaceId.t) (execution_id : ExecutionId.t) (timestamp_nanos : N)
| SpaceActivated (space_id : AddressSpaceId.t) (execution_id : ExecutionId.t)
    (timestamp_nanos : N)
| RegionAllocated (space_id : AddressSpaceId.t) (region_id : MemoryRegionId.t) (size_bytes : N)
    (permissions : MemoryPerms.t) (timestamp_nanos : N)
| RegionDeallocated (space_id : AddressSpaceId.t) (region_id : MemoryRegionId.t)
    (timestamp_nanos : N)
| AccessAttempted (space_id : AddressSpaceId.t) (region_id : MemoryRegionId.t)
    (access_type : MemoryAccessType.t) (allowed : bool) (timestamp_nanos : N)
| SpaceDestroyed (space_id : AddressSpaceId.t) (timestamp_nanos : N).
End AddressSpaceEvent.

Module AddressSpaceManager.
(** The audit log is the list of recorded events. *)
(* sim_kernel/src/address_space.rs:112-129 AddressSpaceManager *)
Record t := mk {
  spaces : gmap AddressSpaceId.t AddressSpace.t;
  execution_to_space : gmap ExecutionId.t AddressSpaceId.t;
  next_cap_id : N;
  space_caps : gmap N (AddressSpaceId.t * ExecutionId.t);
  region_caps : gmap N (MemoryRegionId.t * AddressSpaceId.t * ExecutionId.t);
  current_space : option AddressSpaceId.t;
  audit_log : list AddressSpaceEvent.t;
  page_table_bridge : option PageTableBridge.t
}.
#[global] Instance rebuild_t : Rebuild t := λ s,
  mk (spaces s) (execution_to_space s) (next_cap_id s) (space_caps s) (region_caps s)
     (current_space s) (audit_log s) (page_table_bridge s).

(* sim_kernel/src/address_space.rs:133-144 AddressSpaceManager::new *)
Definition new : t := mk ∅ ∅ 1 ∅ ∅ None [] None.
(* sim_kernel/src/address_space.rs:147-158 AddressSpaceManager::with_page_tables *)
Definition with_page_tables (m : PageTableMode.t) : t :=
  mk ∅ ∅ 1 ∅ ∅ None [] (Some (PageTableBridge.new m)).

(* sim_kernel/src/address_space.rs:71-73 AddressSpaceAuditLog::record *)
Definition record (e : AddressSpaceEvent.t) (s : t) : t := s <| audit_log ::= λ l, l ++ [e] |>.

Section with_hasher.
Context `{DefaultHasher}.

(** [space_id] is the identifier [AddressSpace::new] draws. *)
(* sim_kernel/src/address_space.rs:163-193 AddressSpaceManager::create_address_space *)
Definition create_address_space (space_id : AddressSpaceId.t) (execution_id : ExecutionId.t)
    (timestamp_nanos : N) (s : t) : outcome (AddressSpaceCap.t * t) :=
  let space := AddressSpace.new space_id in
  let s := s <| spaces ::= <[space_id := space]> |> in
  let s := s <| execution_to_space ::= <[execution_id := space_id]> |> in
  let s := s <| page_table_bridge ::= fmap (λ b,
             (PageTableBridge.create_page_table space_id b).2) |> in
  let cap_id := next_cap_id s in
  next ← add_u64 (next_cap_id s) 1;
  let s := s <| next_cap_id := next |> in
  let s := s <| space_caps ::= <[cap_id := (space_id, execution_id)]> |> in
  let s := record (AddressSpaceEvent.SpaceCreated space_id execution_id timestamp_nanos) s in
  Return (AddressSpaceCap.mk space_id cap_id, s).

(** The address a region is mapped at (ignored by the bridge). *)
(* sim_kernel/src/address_space.rs:243-248 AddressSpaceManager::allocate_region *)
Definition virtual_base (region_id : MemoryRegionId.t) : N :=
  let slot := hash_region region_id mod 0x1000 in
  0x10000 + slot * 0x100000.

(* sim_kernel/src/address_space.rs:207-224 AddressSpaceManager::allocate_region *)
Definition check_space_cap (cap : AddressSpaceCap.t) (caller : ExecutionId.t) (s : t)
    : result AddressSpace.t MemoryError.t :=
  let denied := Err (MemoryError.AddressSpaceNotFound (AddressSpaceCap.space_id cap)) in
  match space_caps s !! AddressSpaceCap.cap_id cap with
  | None => denied
  | Some (cap_space_id, cap_owner) =>
      if bool_decide (cap_space_id ≠ AddressSpaceCap.space_id cap) then denied
      else if bool_decide (cap_owner ≠ caller) then denied
      else match spaces s !! AddressSpaceCap.space_id cap with
           | None => denied
           | Some space => Ok space
           end
  end.

(* sim_kernel/src/address_space.rs:199-275 AddressSpaceManager::allocate_region *)
Definition allocate_region (cap : AddressSpaceCap.t) (region : MemoryRegion.t)
    (caller : ExecutionId.t) (timestamp_nanos : N) (s : t)
    : outcome (result MemoryRegionCap.t MemoryError.t * t) :=
  match check_space_cap cap caller s with
  | Err e => Return (Err e, s)
  | Ok space =>
      let sid := AddressSpaceCap.space_id cap in
      let region_id := MemoryRegion.region_id region in
      let size_bytes := MemoryRegion.size_bytes region in
      let permissions := MemoryRegion.permissions region in
      let '(added, space') := AddressSpace.add_region region space in
      let s := s <| spaces ::= <[sid := space']> |> in
      match added with
      | Err e => Return (Err e, s)
      | Ok _ =>
          let s := s <| page_table_bridge ::= fmap (λ b,
                     (PageTableBridge.map_region sid region_id (virtual_base region_id)
                        size_bytes permissions b).2) |> in
          let cap_id := next_cap_id s in
          next ← add_u64 (next_cap_id s) 1;
          let s := s <| next_cap_id := next |> in
          let s := s <| region_caps ::= <[cap_id := (region_id, sid, caller)]> |> in
          let s := record (AddressSpaceEvent.RegionAllocated sid region_id size_bytes
                             permissions timestamp_nanos) s in
          Return (Ok (MemoryRegionCap.mk sid region_id cap_id), s)
      end
  end.
End with_hasher.

(* sim_kernel/src/address_space.rs:312-316 AddressSpaceManager::access_region *)
Definition access_allowed (a : MemoryAccessType.t) (region : MemoryRegion.t) : bool :=
  match a with
  | MemoryAccessType.Read => MemoryRegion.can_read region
  | MemoryAccessType.Write => MemoryRegion.can_write region
  | MemoryAccessType.Execute => MemoryRegion.can_execute region
  end.

(* sim_kernel/src/address_space.rs:280-336 AddressSpaceManager::access_region *)
Definition access_region (cap : MemoryRegionCap.t) (access_type : MemoryAccessType.t)
    (caller : ExecutionId.t) (timestamp_nanos : N) (s : t)
    : result unit MemoryError.t * t :=
  let rid := MemoryRegionCap.region_id cap in
  let sid := MemoryRegionCap.space_id cap in
  match region_caps s !! MemoryRegionCap.cap_id cap with
  | None => (Err (MemoryError.NoCapability rid), s)
  | Some (cap_region_id, cap_space_id, cap_owner) =>
      if bool_decide (cap_region_id ≠ rid) || bool_decide (cap_space_id ≠ sid)
      then (Err (MemoryError.NoCapability rid), s)
      else if bool_decide (cap_owner ≠ caller) then (Err (MemoryError.NoCapability rid), s)
      else
        match spaces s !! sid with
        | None => (Err (MemoryError.AddressSpaceNotFound sid), s)
        | Some space =>
            match AddressSpace.find_region rid space with
            | None => (Err (MemoryError.RegionNotFound rid), s)
            | Some region =>
                let allowed := access_allowed access_type region in
                let s := record (AddressSpaceEvent.AccessAttempted sid rid access_type allowed
                                   timestamp_nanos) s in
                if negb allowed
                then (Err (MemoryError.PermissionDenied rid access_type
                             (MemoryRegion.permissions region)), s)
                else (Ok tt, s)
            end
        end
  end.

(** The identifier in the error is drawn when the error is built. *)
(* sim_kernel/src/address_space.rs:341-362 AddressSpaceManager::activate_space *)
Definition activate_space (drawn : AddressSpaceId.t) (execution_id : ExecutionId.t)
    (timestamp_nanos : N) (s : t) : result unit MemoryError.t * t :=
  match execution_to_space s !! execution_id with
  | None => (Err (MemoryError.AddressSpaceNotFound drawn), s)
  | Some space_id =>
      let s := s <| current_space := Some space_id |> in
      (Ok tt, record (AddressSpaceEvent.SpaceActivated space_id execution_id timestamp_nanos) s)
  end.

(* sim_kernel/src/address_space.rs:370-373 AddressSpaceManager::get_space_for_execution *)
Definition get_space_for_execution (execution_id : ExecutionId.t) (s : t)
    : option AddressSpace.t :=
  space_id ← execution_to_space s !! execution_id; spaces s !! space_id.

(* sim_kernel/src/address_space.rs:381-383 AddressSpaceManager::clear_audit_log *)
Definition clear_audit_log (s : t) : t := s <| audit_log := [] |>.

(* sim_kernel/src/address_space.rs:388-417 AddressSpaceManager::destroy_address_space *)
Definition destroy_address_space (drawn : AddressSpaceId.t) (execution_id : ExecutionId.t)
    (timestamp_nanos : N) (s : t) : result unit MemoryError.t * t :=
  match execution_to_space s !! execution_id with
  | None => (Err (MemoryError.AddressSpaceNotFound drawn), s)
  | Some space_id =>
      let s := s <| execution_to_space ::= delete execution_id |> in
      let s := s <| spaces ::= delete space_id |> in
      let s := s <| space_caps ::= hm_retain (λ c, bool_decide (c.1 ≠ space_id)) |> in
      let s := s <| region_caps ::= hm_retain (λ c, bool_decide (c.1.2 ≠ space_id)) |> in
      let s := if bool_decide (current_space s = Some space_id)
               then s <| current_space := None |> else s in
      (Ok tt, record (AddressSpaceEvent.SpaceDestroyed space_id timestamp_nanos) s)
  end.
End AddressSpaceManager.

(** ** Properties *)
Import AddressSpaceManager.
Implicit Types (s : AddressSpaceManager.t) (sid : AddressSpaceId.t) (e : ExecutionId.t).

Module AsmOp.
Inductive t :=
| Create (sid : AddressSpaceId.t) (e : ExecutionId.t) (now : N)
| Allocate (cap : AddressSpaceCap.t) (r : MemoryRegion.t) (e : ExecutionId.t) (now : N)
| Access (cap : MemoryRegionCap.t) (a : MemoryAccessType.t) (e : ExecutionId.t) (now : N)
| Activate (drawn : AddressSpaceId.t) (e : ExecutionId.t) (now : N)
| Destroy (drawn : AddressSpaceId.t) (e : ExecutionId.t) (now : N).

Definition exec `{DefaultHasher} (o : t) (s : AddressSpaceManager.t)
    : outcome AddressSpaceManager.t :=
  match o with
  | Create sid e now => r ← create_address_space sid e now s; Return r.2
  | Allocate cap r e now => x ← allocate_region cap r e now s; Return x.2
  | Access cap a e now => Return (access_region cap a e now s).2
  | Activate d e now => Return (activate_space d e now s).2
  | Destroy d e now => Return (destroy_address_space d e now s).2
  end.
End AsmOp.

Section properties.
Context `{DefaultHasher}.

(** Histories: a created space has an identifier outside [used], which holds the
    identifiers drawn so far. *)
Inductive asm_reach (s0 : AddressSpaceManager.t) (used : gset AddressSpaceId.t)
    : AddressSpaceManager.t → gset AddressSpaceId.t → Prop :=
| asm_refl : asm_reach s0 used s0 used
| asm_create s used' sid e now s' :
    asm_reach s0 used s used' → sid ∉ used' →
    AsmOp.exec (AsmOp.Create sid e now) s = Return s' →
    asm_reach s0 used s' ({[sid]} ∪ used')
| asm_step s used' o s' :
    asm_reach s0 used s used' → (∀ sid e now, o ≠ AsmOp.Create sid e now) →
    AsmOp.exec o s = Return s' → asm_reach s0 used s' used'.

(** The region a registered capability stands for. *)
Definition region_of (sid : AddressSpaceId.t) (rid : MemoryRegionId.t)
    (s : AddressSpaceManager.t) : option MemoryRegion.t :=
  space ← spaces s !! sid; AddressSpace.find_region rid space.

Record asm_wf (s : AddressSpaceManager.t) (used : gset AddressSpaceId.t) : Prop := {
  aw_spaces : ∀ sid, is_Some (spaces s !! sid) → sid ∈ used;
  aw_space_caps : ∀ k sid e, space_caps s !! k = Some (sid, e) →
    k < next_cap_id s ∧ is_Some (spaces s !! sid);
  aw_region_caps : ∀ k rid sid e, region_caps s !! k = Some (rid, sid, e) →
    k < next_cap_id s ∧ is_Some (region_of sid rid s);
  aw_mapping : ∀ e sid, execution_to_space s !! e = Some sid → is_Some (spaces s !! sid);
  aw_current : ∀ sid, current_space s = Some sid → is_Some (spaces s !! sid)
}.

Lemma find_region_app rid l r id :
  is_Some (AddressSpace.find_region rid (AddressSpace.mk id l)) →
  AddressSpace.find_region rid (AddressSpace.mk id (l ++ [r])) =
  AddressSpace.find_region rid (AddressSpace.mk id l).
Proof.
  unfold AddressSpace.find_region. simpl.
  destruct (list_find _ l) as [[i x]|] eqn:E; [|by intros [??]]. intros _.
  by erewrite list_find_app_l.
Qed.

Lemma find_region_new rid l r id :
  MemoryRegion.region_id r = rid →
  AddressSpace.find_region rid (AddressSpace.mk id l) = None →
  AddressSpace.find_region rid (AddressSpace.mk id (l ++ [r])) = Some r.
Proof.
  intros Hr. unfold AddressSpace.find_region. simpl.
  destruct (list_find _ l) as [[i x]|] eqn:E; [done|]. intros _.
  rewrite list_find_app_r by done. simpl. rewrite decide_True by done. done.
Qed.

Lemma find_region_added rid l r id :
  MemoryRegion.region_id r = rid →
  is_Some (AddressSpace.find_region rid (AddressSpace.mk id (l ++ [r]))).
Proof.
  intros Hr. destruct (AddressSpace.find_region rid (AddressSpace.mk id l)) as [x|] eqn:E.
  - rewrite find_region_app; by rewrite E.
  - by rewrite (find_region_new _ _ _ _ Hr E).
Qed.

Lemma region_of_ne sid sid' rid s x :
  sid ≠ sid' → region_of sid rid (s <| spaces ::= <[sid' := x]> |>) = region_of sid rid s.
Proof. intros Hne. unfold region_of; simpl. by rewrite lookup_insert_ne. Qed.

Lemma create_wf sid e now s s' used :
  sid ∉ used → AsmOp.exec (AsmOp.Create sid e now) s = Return s' →
  asm_wf s used → asm_wf s' ({[sid]} ∪ used).
Proof.
  intros Hsid. simpl. intros (r & Hr & [= <-])%bind_Return [H1 H2 H3 H4 H5].
  unfold create_address_space in Hr. apply bind_Return in Hr as (n & [-> _]%add_u64_Return & [= <-]).
  assert (∀ x, is_Some (spaces s !! x) → x ≠ sid) as Hne by (intros x ?%H1 ->; done).
  assert (∀ x, is_Some (spaces s !! x) →
    is_Some (<[sid := AddressSpace.new sid]> (spaces s) !! x)) as Hmono.
  { intros x Hx. rewrite lookup_insert. case_decide; [by eexists|done]. }
  split; simpl.
  - intros x. rewrite lookup_insert. case_decide; [set_solver|]. intros ?%H1. set_solver.
  - intros k x e'. rewrite lookup_insert. case_decide; subst.
    + intros [= <- <-]. split; [lia|]. rewrite lookup_insert_eq. by eexists.
    + intros [? ?]%H2. split; [lia|]. by apply Hmono.
  - intros k rid x e' [? Hreg]%H3. split; [lia|].
    assert (x ≠ sid). { apply Hne. destruct Hreg as [? ?%bind_Some]. naive_solver. }
    unfold region_of in *; simpl. by rewrite lookup_insert_ne.
  - intros e' x. rewrite lookup_insert. case_decide; subst.
    + intros [= <-]. rewrite lookup_insert_eq. by eexists.
    + intros ?%H4. by apply Hmono.
  - intros x ?%H5. by apply Hmono.
Qed.

(** What a granted allocation does. *)
Lemma check_space_cap_Ok cap caller s space :
  check_space_cap cap caller s = Ok space ↔
  space_caps s !! AddressSpaceCap.cap_id cap = Some (AddressSpaceCap.space_id cap, caller) ∧
  spaces s !! AddressSpaceCap.space_id cap = Some space.
Proof.
  unfold check_space_cap.
  destruct (space_caps s !! AddressSpaceCap.cap_id cap) as [[sid0 o]|]; [|naive_solver].
  repeat case_bool_decide; try naive_solver.
  destruct (spaces s !! AddressSpaceCap.space_id cap); naive_solver.
Qed.

Lemma allocate_region_inv cap r caller now s x :
  allocate_region cap r caller now s = Return x →
  let sid := AddressSpaceCap.space_id cap in
  (is_err x.1 = true ∧ x.2 = s) ∨
  (∃ space, check_space_cap cap caller s = Ok space ∧
    let added := AddressSpace.mk (AddressSpace.space_id space)
                   (AddressSpace.regions space ++ [r]) in
    x.1 = Ok (MemoryRegionCap.mk sid (MemoryRegion.region_id r) (next_cap_id s)) ∧
    spaces x.2 = <[sid := added]> (spaces s) ∧
    execution_to_space x.2 = execution_to_space s ∧
    next_cap_id x.2 = next_cap_id s + 1 ∧ space_caps x.2 = space_caps s ∧
    region_caps x.2 = <[next_cap_id s := (MemoryRegion.region_id r, sid, caller)]>
                        (region_caps s) ∧
    current_space x.2 = current_space s ∧
    audit_log x.2 = audit_log s ++ [AddressSpaceEvent.RegionAllocated sid
      (MemoryRegion.region_id r) (MemoryRegion.size_bytes r) (MemoryRegion.permissions r) now]).
Proof.
  unfold allocate_region. destruct (check_space_cap cap caller s) as [space|e] eqn:Ec.
  - simpl. intros (n & [-> _]%add_u64_Return & [= <-])%bind_Return. right. exists space.
    by destruct space.
  - intros [= <-]. by left.
Qed.

Lemma allocate_wf cap r caller now s s' used :
  AsmOp.exec (AsmOp.Allocate cap r caller now) s = Return s' → asm_wf s used → asm_wf s' used.
Proof.
  simpl. intros (x & Hx & [= <-])%bind_Return Hw.
  apply allocate_region_inv in Hx as [[_ ->]|(space & Hc & _ & E1 & E2 & E3 & E4 & E5 & E6 & _)];
    [done|].
  apply check_space_cap_Ok in Hc as [Hcap Hsp]. destruct Hw as [H1 H2 H3 H4 H5].
  set (sid := AddressSpaceCap.space_id cap) in *. destruct space as [sp l]. simpl in *.
  assert (∀ y, is_Some (spaces x.2 !! y) ↔ is_Some (spaces s !! y)) as Hdom.
  { intros y. rewrite E1, lookup_insert. case_decide; [|done]. subst. rewrite Hsp. done. }
  assert (∀ y rid, is_Some (region_of y rid s) → is_Some (region_of y rid x.2)) as Hreg.
  { intros y rid. unfold region_of. rewrite E1, lookup_insert. case_decide; [|done]. subst.
    rewrite Hsp. simpl. intros Hf. by rewrite find_region_app. }
  split.
  - intros y. rewrite Hdom. apply H1.
  - intros k y e'. rewrite E4, E3, Hdom. intros [? ?]%H2. split; [lia|done].
  - intros k rid y e'. rewrite E5, E3, lookup_insert. case_decide; subst.
    + intros [= <- <- <-]. split; [lia|]. unfold region_of. rewrite E1, lookup_insert_eq. simpl.
      by apply find_region_added.
    + intros [? ?]%H3. split; [lia|]. by apply Hreg.
  - intros e' y. rewrite E2, Hdom. apply H4.
  - intros y. rewrite E6, Hdom. apply H5.
Qed.

Lemma access_region_state cap a caller now s :
  ∃ log, (access_region cap a caller now s).2 = s <| audit_log := log |>.
Proof.
  unfold access_region. assert (s = s <| audit_log := audit_log s |>) as Hs by by destruct s.
  destruct (region_caps s !! _) as [[[??]?]|]; [|by eexists].
  destruct (_ || _); [by eexists|]. case_bool_decide; [by eexists|].
  destruct (spaces s !! _); [|by eexists]. destruct (AddressSpace.find_region _ _); [|by eexists].
  destruct (negb _); by eexists.
Qed.

Lemma destroy_inv drawn e now s :
  match execution_to_space s !! e with
  | None => (destroy_address_space drawn e now s).2 = s
  | Some sid =>
      let s' := (destroy_address_space drawn e now s).2 in
      execution_to_space s' = delete e (execution_to_space s) ∧
      spaces s' = delete sid (spaces s) ∧ next_cap_id s' = next_cap_id s ∧
      space_caps s' = hm_retain (λ c, bool_decide (c.1 ≠ sid)) (space_caps s) ∧
      region_caps s' = hm_retain (λ c, bool_decide (c.1.2 ≠ sid)) (region_caps s) ∧
      current_space s' ≠ Some sid ∧
      (∀ x, current_space s' = Some x → current_space s = Some x)
  end.
Proof.
  unfold destroy_address_space. destruct (execution_to_space s !! e) as [sid|]; [|done].
  simpl. case_bool_decide; by split_and!.
Qed.

(** Every execution's space is its own. *)
Definition own_space (s : AddressSpaceManager.t) : Prop :=
  ∀ e e' sid, execution_to_space s !! e = Some sid → execution_to_space s !! e' = Some sid → e = e'.

Lemma destroy_wf drawn e now s used :
  own_space s → asm_wf s used → asm_wf (destroy_address_space drawn e now s).2 used.
Proof.
  intros Hown [H1 H2 H3 H4 H5]. pose proof (destroy_inv drawn e now s) as Hd.
  destruct (execution_to_space s !! e) as [sid|] eqn:Ee; [|by rewrite Hd].
  destruct Hd as (E1 & E2 & E3 & E4 & E5 & E6 & E7).
  set (s' := (destroy_address_space drawn e now s).2) in *.
  assert (∀ x, x ≠ sid → is_Some (spaces s !! x) → is_Some (spaces s' !! x)) as Hk.
  { intros x Hne ?. rewrite E2. by rewrite lookup_delete_ne. }
  split.
  - intros x. rewrite E2. intros [? [_ ?]%lookup_delete_Some]. apply H1. by eexists.
  - intros k x e'. rewrite E4, E3. intros [Hc Hb]%hm_retain_lookup.
    apply bool_decide_eq_true in Hb. apply H2 in Hc as [? ?]. split; [done|]. by apply Hk.
  - intros k rid x e'. rewrite E5, E3. intros [Hc Hb]%hm_retain_lookup.
    apply bool_decide_eq_true in Hb. simpl in Hb. apply H3 in Hc as [? Hr]. split; [done|].
    unfold region_of in *. by rewrite E2, lookup_delete_ne.
  - intros e' x. rewrite E1. intros [Hne Hx]%lookup_delete_Some. apply Hk; [|by eapply H4].
    intros ->. apply Hne. by eapply Hown.
  - intros x Hx. apply Hk; [congruence|]. apply H5. auto.
Qed.

Lemma own_space_step o s s' used :
  match o with AsmOp.Create sid _ _ => sid ∉ used | _ => True end →
  AsmOp.exec o s = Return s' → asm_wf s used → own_space s → own_space s'.
Proof.
  intros Hf He Hw Hown. destruct o; simpl in *.
  - apply bind_Return in He as (r & Hr & [= <-]). unfold create_address_space in Hr.
    apply bind_Return in Hr as (n & _ & [= <-]). simpl.
    assert (∀ x, execution_to_space s !! x = Some sid → False) as Hfr.
    { intros x Hx%(aw_mapping _ _ Hw). by apply (aw_spaces _ _ Hw) in Hx. }
    intros e1 e2 x. simpl. rewrite !lookup_insert. repeat case_decide; subst; try done.
    + intros [= <-] ?. exfalso. eauto.
    + intros ? [= <-]. exfalso. eauto.
    + apply Hown.
  - apply bind_Return in He as (x & Hx & [= <-]).
    apply allocate_region_inv in Hx as [[_ ->]|(?&_&_&_&E&_)]; [done|].
    unfold own_space. rewrite E. done.
  - injection He as <-. destruct (access_region_state cap a e now s) as [log ->]. done.
  - injection He as <-. unfold activate_space. by destruct (execution_to_space s !! e).
  - injection He as <-. pose proof (destroy_inv drawn e now s) as Hd.
    destruct (execution_to_space s !! e); [|by rewrite Hd]. destruct Hd as (E & _).
    intros e1 e2 x. rewrite E. intros [_ ?]%lookup_delete_Some [_ ?]%lookup_delete_Some.
    by eapply Hown.
Qed.

Lemma asm_exec_wf o s s' used :
  (∀ sid e now, o ≠ AsmOp.Create sid e now) →
  AsmOp.exec o s = Return s' → own_space s → asm_wf s used → asm_wf s' used.
Proof.
  intros Hn He Hown Hw. destruct o; simpl in He.
  - by destruct (Hn sid e now).
  - by eapply allocate_wf.
  - injection He as <-. destruct (access_region_state cap a e now s) as [log ->]. by destruct Hw.
  - injection He as <-. unfold activate_space.
    destruct (execution_to_space s !! e) as [sid|] eqn:E; [|done].
    destruct Hw as [H1 H2 H3 H4 H5]. split; try done. simpl. intros x [= <-]. by eapply H4.
  - injection He as <-. by apply destroy_wf.
Qed.

Lemma asm_reach_wf s0 used s used' :
  asm_wf s0 used → own_space s0 → asm_reach s0 used s used' → asm_wf s used' ∧ own_space s.
Proof.
  intros Hw Ho. induction 1 as [|s used1 sid e now s' _ [IHw IHo] Hf He|s used1 o s' _ [IHw IHo] Hn He].
  - done.
  - split; [by eapply create_wf|]. by eapply (own_space_step (AsmOp.Create sid e now)).
  - split; [by eapply asm_exec_wf|]. eapply (own_space_step o); [|done..].
    destruct o; try done. by destruct (Hn sid e now).
Qed.

Lemma empty_asm_wf b : asm_wf (mk ∅ ∅ 1 ∅ ∅ None [] b) ∅ ∧ own_space (mk ∅ ∅ 1 ∅ ∅ None [] b).
Proof.
  split; [split|]; simpl; try done; intros; try by rewrite lookup_empty in *.
Qed.

(** [caller] holds the registered capability [cap]. *)
Definition holds_region (cap : MemoryRegionCap.t) (caller : ExecutionId.t)
    (s : AddressSpaceManager.t) : Prop :=
  region_caps s !! MemoryRegionCap.cap_id cap =
    Some (MemoryRegionCap.region_id cap, MemoryRegionCap.space_id cap, caller).
#[local] Instance holds_region_dec cap caller s : Decision (holds_region cap caller s).
Proof. unfold holds_region. apply _. Defined.

Lemma access_not_held cap a caller now s :
  ¬ holds_region cap caller s →
  access_region cap a caller now s =
    (Err (MemoryError.NoCapability (MemoryRegionCap.region_id cap)), s).
Proof.
  unfold holds_region, access_region. intros Hn.
  destruct (region_caps s !! MemoryRegionCap.cap_id cap) as [[[rid sid] o]|]; [|done].
  destruct (bool_decide (rid ≠ _)) eqn:B1; [done|]. destruct (bool_decide (sid ≠ _)) eqn:B2; [done|].
  destruct (bool_decide (o ≠ _)) eqn:B3; [done|]. simpl. exfalso. apply Hn.
  apply bool_decide_eq_false in B1, B2, B3. apply dec_stable in B1, B2, B3. by subst.
Qed.

Lemma access_held cap a caller now s region :
  holds_region cap caller s →
  region_of (MemoryRegionCap.space_id cap) (MemoryRegionCap.region_id cap) s = Some region →
  access_region cap a caller now s =
    (if access_allowed a region then Ok tt
     else Err (MemoryError.PermissionDenied (MemoryRegionCap.region_id cap) a
                 (MemoryRegion.permissions region)),
     record (AddressSpaceEvent.AccessAttempted (MemoryRegionCap.space_id cap)
               (MemoryRegionCap.region_id cap) a (access_allowed a region) now) s).
Proof.
  unfold holds_region, access_region, region_of. intros -> (space & -> & ->)%bind_Some.
  rewrite !bool_decide_false by (intros Hn; by apply Hn). simpl.
  by destruct (access_allowed a region).
Qed.

(** A space that is gone, with all capabilities on it. *)
Definition dead (sid : AddressSpaceId.t) (s : AddressSpaceManager.t) : Prop :=
  (∀ k e, space_caps s !! k ≠ Some (sid, e)) ∧
  (∀ k rid e, region_caps s !! k ≠ Some (rid, sid, e)).

Lemma dead_step o s s' (used : gset AddressSpaceId.t) sid :
  match o with AsmOp.Create sid' _ _ => sid' ∉ used | _ => True end → sid ∈ used →
  AsmOp.exec o s = Return s' → dead sid s → dead sid s'.
Proof.
  intros Hf Hu He [D1 D2]. destruct o; simpl in *.
  - apply bind_Return in He as (r & Hr & [= <-]). unfold create_address_space in Hr.
    apply bind_Return in Hr as (n & _ & [= <-]). split; simpl; [|done].
    intros k e'. rewrite lookup_insert. case_decide; [|done]. intros [= -> ->]. done.
  - apply bind_Return in He as (x & Hx & [= <-]).
    apply allocate_region_inv in Hx as [[_ ->]|(sp&Hc&_&_&_&_&E4&E5&_)]; [done|].
    apply check_space_cap_Ok in Hc as [Hc _]. split.
    + by rewrite E4.
    + intros k rid e'. rewrite E5, lookup_insert. case_decide; [|done].
      intros [= _ Hs _]. rewrite Hs in Hc. by eapply D1.
  - injection He as <-. by destruct (access_region_state cap a e now s) as [log ->].
  - injection He as <-. unfold activate_space. by destruct (execution_to_space s !! e).
  - injection He as <-. pose proof (destroy_inv drawn e now s) as Hd.
    destruct (execution_to_space s !! e); [|by rewrite Hd].
    destruct Hd as (_ & _ & _ & E4 & E5 & _). split.
    + intros k e'. rewrite E4. intros [Hc _]%hm_retain_lookup. by eapply D1.
    + intros k rid e'. rewrite E5. intros [Hc _]%hm_retain_lookup. by eapply D2.
Qed.

Lemma dead_reach s0 used s used' sid :
  dead sid s0 → sid ∈ used → asm_reach s0 used s used' → dead sid s ∧ sid ∈ used'.
Proof.
  intros Hd Hu. induction 1 as [|s used1 sid' e now s' _ [IHd IHu] Hf He|s used1 o s' _ [IHd IHu] Hn He].
  - done.
  - split; [|set_solver]. by eapply (dead_step (AsmOp.Create sid' e now)).
  - split; [|done]. eapply (dead_step o); [|done..]. destruct o; try done. by destruct (Hn sid0 e now).
Qed.

Lemma destroy_dead drawn e now s sid :
  execution_to_space s !! e = Some sid → dead sid (destroy_address_space drawn e now s).2.
Proof.
  intros He. pose proof (destroy_inv drawn e now s) as Hd. rewrite He in Hd.
  destruct Hd as (_ & _ & _ & E4 & E5 & _). split.
  - intros k e'. rewrite E4. intros [_ Hb]%hm_retain_lookup.
    apply bool_decide_eq_true in Hb. by apply Hb.
  - intros k rid e'. rewrite E5. intros [_ Hb]%hm_retain_lookup.
    apply bool_decide_eq_true in Hb. by apply Hb.
Qed.

(** Histories that remember for whom each space was created: [owners] maps every identifier
    drawn so far to the execution of its [create_address_space]. *)
Inductive owned_reach (s0 : AddressSpaceManager.t)
    : AddressSpaceManager.t → gmap AddressSpaceId.t ExecutionId.t → Prop :=
| owned_refl : owned_reach s0 s0 ∅
| owned_create s owners sid e now s' :
    owned_reach s0 s owners → owners !! sid = None →
    AsmOp.exec (AsmOp.Create sid e now) s = Return s' →
    owned_reach s0 s' (<[sid := e]> owners)
| owned_step s owners o s' :
    owned_reach s0 s owners → (∀ sid e now, o ≠ AsmOp.Create sid e now) →
    AsmOp.exec o s = Return s' → owned_reach s0 s' owners.

Lemma owned_reach_asm s0 s owners : owned_reach s0 s owners → asm_reach s0 ∅ s (dom owners).
Proof.
  induction 1 as [|s owners sid e now s' _ IH Hf He|s owners o s' _ IH Hn He].
  - rewrite dom_empty_L. constructor.
  - rewrite dom_insert_L. eapply asm_create; [done|by apply not_elem_of_dom|done].
  - by eapply asm_step.
Qed.

(** Every capability belongs to the owner of its space. *)
Definition caps_owned (s : AddressSpaceManager.t) (owners : gmap AddressSpaceId.t ExecutionId.t) : Prop :=
  (∀ k sid e, space_caps s !! k = Some (sid, e) → owners !! sid = Some e) ∧
  (∀ k rid sid e, region_caps s !! k = Some (rid, sid, e) → owners !! sid = Some e).

Lemma create_caps_owned sid e now s s' owners :
  owners !! sid = None → AsmOp.exec (AsmOp.Create sid e now) s = Return s' →
  caps_owned s owners → caps_owned s' (<[sid := e]> owners).
Proof.
  intros Hf. simpl. intros (r & Hr & [= <-])%bind_Return [H1 H2]. unfold create_address_space in Hr.
  apply bind_Return in Hr as (n & _ & [= <-]).
  assert (∀ x e', owners !! x = Some e' → <[sid := e]> owners !! x = Some e') as Hmono.
  { intros x e' Hx. rewrite lookup_insert_ne; congruence. }
  split; simpl; [|eauto]. intros k x e'. rewrite lookup_insert_Some.
  intros [[_ [= <- <-]]|[_ Hx]]; [apply lookup_insert_eq|eauto].
Qed.
Lemma step_caps_owned o s s' owners :
  (∀ sid e now, o ≠ AsmOp.Create sid e now) → AsmOp.exec o s = Return s' →
  caps_owned s owners → caps_owned s' owners.
Proof.
  intros Hn He [H1 H2]. destruct o; simpl in He.
  - by destruct (Hn sid e now).
  - apply bind_Return in He as (x & Hx & [= <-]).
    apply allocate_region_inv in Hx as [[_ ->]|(sp & Hc & _ & _ & _ & _ & E4 & E5 & _)]; [done|].
    apply check_space_cap_Ok in Hc as [Hc _]. split; rewrite ?E4, ?E5; [done|].
    intros k rid sid e'. rewrite lookup_insert_Some. intros [[_ [= _ <- <-]]|[_ Hx]]; eauto.
  - injection He as <-. by destruct (access_region_state cap a e now s) as [log ->].
  - injection He as <-. unfold activate_space. by destruct (execution_to_space s !! e).
  - injection He as <-. pose proof (destroy_inv drawn e now s) as Hd.
    destruct (execution_to_space s !! e); [|by rewrite Hd].
    destruct Hd as (_ & _ & _ & E4 & E5 & _). split; intros *; rewrite ?E4, ?E5;
      intros [Hc _]%hm_retain_lookup; eauto.
Qed.
Lemma owned_reach_caps s0 s owners :
  caps_owned s0 ∅ → owned_reach s0 s owners → caps_owned s owners.
Proof. intros H0. induction 1; eauto using create_caps_owned, step_caps_owned. Qed.
End properties.

(** The manager as the kernel creates it, with or without page tables. *)
Definition initial_manager (b : option PageTableMode.t) : AddressSpaceManager.t :=
  match b with
  | None => AddressSpaceManager.new
  | Some m => with_page_tables m
  end.

Lemma initial_manager_wf b : asm_wf (initial_manager b) ∅ ∧ own_space (initial_manager b).
Proof. destruct b; apply empty_asm_wf. Qed.

Lemma initial_caps_owned b : caps_owned (initial_manager b) ∅.
Proof. destruct b; split; intros *; simpl; by rewrite lookup_empty. Qed.

(** A concrete history: one space, one read-only region. *)
Definition sid1 := AddressSpaceId.mk 1.
Definition sid2 := AddressSpaceId.mk 2.
Definition exec1 := ExecutionId.mk 11.
Definition exec2 := ExecutionId.mk 12.
Definition ro_region := MemoryRegion.mk (MemoryRegionId.mk 21) 4096 MemoryPerms.read_only
                          MemoryBacking.Anonymous.
Definition space_cap1 := AddressSpaceCap.mk sid1 1.
Definition region_cap1 := MemoryRegionCap.mk sid1 (MemoryRegionId.mk 21) 2.
Definition created_manager : AddressSpaceManager.t :=
  Eval vm_compute in
    match @create_address_space sample_hasher sid1 exec1 5 AddressSpaceManager.new with
    | Return (_, s) => s | _ => AddressSpaceManager.new
    end.
Definition allocated_manager : AddressSpaceManager.t :=
  Eval vm_compute in
    match @allocate_region sample_hasher space_cap1 ro_region exec1 6 created_manager with
    | Return (_, s) => s | _ => AddressSpaceManager.new
    end.

Lemma created_reach :
  @asm_reach sample_hasher (initial_manager None) ∅ created_manager ({[sid1]} ∪ ∅).
Proof. eapply (@asm_create sample_hasher _ _ _ _ sid1 exec1 5); [constructor|set_solver|done]. Qed.

Lemma allocated_reach :
  @asm_reach sample_hasher (initial_manager None) ∅ allocated_manager ({[sid1]} ∪ ∅).
Proof.
  eapply (@asm_step sample_hasher _ _ _ _ (AsmOp.Allocate space_cap1 ro_region exec1 6));
    [apply created_reach|done|done].
Qed.

Lemma allocated_owned :
  @owned_reach sample_hasher (initial_manager None) allocated_manager {[sid1 := exec1]}.
Proof.
  eapply (@owned_step sample_hasher _ created_manager _ (AsmOp.Allocate space_cap1 ro_region exec1 6)); [|done|done].
  eapply (@owned_create sample_hasher _ _ ∅ sid1 exec1 5); [constructor|done|done].
Qed.

Module AddrSpaceSpec.
(** C32: memory isolation.  In every reachable state an access is granted only to the
    execution for which the region's address space was created, with a capability registered for it
    and that region and space, and only if the region's permissions allow it; any other
    caller or a made-up capability is refused without any effect, and every attempt that gets past the
    capability check is recorded with its outcome.  No other execution can allocate in the space
    either.  (Being the owner lasts: after a second [create_address_space] for the same
    execution its first space remains its own and usable, also when [destroy_address_space] has
    destroyed the second, see [second_space_orphans_first].) *)
Theorem access_is_isolated `{DefaultHasher} b s owners cap a caller now :
  owned_reach (initial_manager b) s owners →
  ((access_region cap a caller now s).1 = Ok tt →
     owners !! MemoryRegionCap.space_id cap = Some caller ∧ holds_region cap caller s ∧
     ∃ region,
       region_of (MemoryRegionCap.space_id cap) (MemoryRegionCap.region_id cap) s = Some region ∧
       access_allowed a region = true) ∧
  (¬ holds_region cap caller s →
     access_region cap a caller now s =
       (Err (MemoryError.NoCapability (MemoryRegionCap.region_id cap)), s)) ∧
  (holds_region cap caller s →
     owners !! MemoryRegionCap.space_id cap = Some caller ∧
     ∃ region,
       region_of (MemoryRegionCap.space_id cap) (MemoryRegionCap.region_id cap) s = Some region ∧
       access_region cap a caller now s =
         (if access_allowed a region then Ok tt
          else Err (MemoryError.PermissionDenied (MemoryRegionCap.region_id cap) a
                      (MemoryRegion.permissions region)),
          record (AddressSpaceEvent.AccessAttempted (MemoryRegionCap.space_id cap)
                    (MemoryRegionCap.region_id cap) a (access_allowed a region) now) s)) ∧
  (∀ scap r rcap s',
     allocate_region scap r caller now s = Return (Ok rcap, s') →
     owners !! AddressSpaceCap.space_id scap = Some caller).
Proof.
  intros Hr. destruct (initial_manager_wf b) as [Hw Ho].
  destruct (asm_reach_wf _ _ _ _ Hw Ho (owned_reach_asm _ _ _ Hr)) as [Hw' _].
  destruct (owned_reach_caps _ _ _ (initial_caps_owned b) Hr) as [Hsc Hrc].
  assert (holds_region cap caller s → ∃ region,
    region_of (MemoryRegionCap.space_id cap) (MemoryRegionCap.region_id cap) s = Some region) as Hregion.
  { intros Hh. by destruct (aw_region_caps _ _ Hw' _ _ _ _ Hh) as [_ [region Hreg]]; exists region. }
  split_and!.
  - intros Hok. destruct (holds_region_dec cap caller s) as [Hh|Hh];
      [|by rewrite access_not_held in Hok].
    split_and!; [by eapply Hrc|done|]. destruct (Hregion Hh) as [region Hreg]. exists region. split; [done|].
    erewrite access_held in Hok by done. by destruct (access_allowed a region).
  - apply access_not_held.
  - intros Hh. split; [by eapply Hrc|]. destruct (Hregion Hh) as [region Hreg].
    exists region. split; [done|]. by apply access_held.
  - intros scap r rcap s' [[? _]|(sp & Hc & _)]%allocate_region_inv; [done|].
    apply check_space_cap_Ok in Hc as [Hc _]. by eapply Hsc.
Qed.

Lemma access_is_isolated_witness :
  (access_region region_cap1 MemoryAccessType.Read exec1 9 allocated_manager).1 = Ok tt ∧
  access_region region_cap1 MemoryAccessType.Read exec2 9 allocated_manager =
    (Err (MemoryError.NoCapability (MemoryRegionId.mk 21)), allocated_manager) ∧
  holds_region region_cap1 exec1 allocated_manager.
Proof.
  split; [by vm_compute|]. split.
  - apply (@access_is_isolated sample_hasher None allocated_manager _ region_cap1
      MemoryAccessType.Read exec2 9 allocated_owned). by vm_compute.
  - apply (@access_is_isolated sample_hasher None allocated_manager _ region_cap1
      MemoryAccessType.Read exec1 9 allocated_owned). by vm_compute.
Defined.

(** Allocation round trip: the capability that [allocate_region] returns lets its
    owner do exactly what the region's permissions say, at any later time, and nobody
    else anything (the region's identifier being new in the space). *)
Theorem allocated_region_is_accessible `{DefaultHasher} cap r caller now s rcap s' a who later :
  allocate_region cap r caller now s = Return (Ok rcap, s') →
  region_of (AddressSpaceCap.space_id cap) (MemoryRegion.region_id r) s = None →
  (access_region rcap a who later s').1 =
    (if bool_decide (who = caller) then
       if access_allowed a r then Ok tt
       else Err (MemoryError.PermissionDenied (MemoryRegion.region_id r) a
                   (MemoryRegion.permissions r))
     else Err (MemoryError.NoCapability (MemoryRegion.region_id r))).
Proof.
  intros Ha Hnew. apply allocate_region_inv in Ha
    as [[? _]|(space & Hc & E0 & E1 & _ & _ & _ & E5 & _)]; [done|]. simpl in *.
  injection E0 as ->. apply check_space_cap_Ok in Hc as [_ Hsp].
  case_bool_decide as Hw.
  - subst who. unfold region_of in Hnew. rewrite Hsp in Hnew. destruct space as [i l].
    erewrite (access_held _ a caller later s' r); [done|..].
    + unfold holds_region; simpl. rewrite E5. apply lookup_insert_eq.
    + unfold region_of; simpl. rewrite E1, lookup_insert_eq. simpl. by apply find_region_new.
  - rewrite access_not_held; [done|]. unfold holds_region; simpl.
    rewrite E5, lookup_insert_eq. congruence.
Qed.

Lemma allocated_region_is_accessible_witness :
  (access_region region_cap1 MemoryAccessType.Write exec1 9 allocated_manager).1 =
    Err (MemoryError.PermissionDenied (MemoryRegionId.mk 21) MemoryAccessType.Write
           MemoryPerms.read_only).
Proof.
  apply (@allocated_region_is_accessible sample_hasher space_cap1 ro_region exec1 6
    created_manager region_cap1 allocated_manager MemoryAccessType.Write exec1 9); done.
Defined.

(** Destroying an execution's address space revokes it for good: from then on, in
    every later state, no capability on that space (region or space, genuine or made
    up) lets anyone access or allocate memory in it. *)
Theorem destroyed_space_stays_dead `{DefaultHasher} b s used e sid drawn now s' used' :
  asm_reach (initial_manager b) ∅ s used →
  execution_to_space s !! e = Some sid →
  asm_reach (destroy_address_space drawn e now s).2 used s' used' →
  (∀ cap a caller t, MemoryRegionCap.space_id cap = sid →
     access_region cap a caller t s' =
       (Err (MemoryError.NoCapability (MemoryRegionCap.region_id cap)), s')) ∧
  (∀ cap r caller t, AddressSpaceCap.space_id cap = sid →
     allocate_region cap r caller t s' =
       Return (Err (MemoryError.AddressSpaceNotFound sid), s')).
Proof.
  intros Hr He Hr'. destruct (initial_manager_wf b) as [Hw Ho].
  destruct (asm_reach_wf _ _ _ _ Hw Ho Hr) as [Hw' _].
  assert (sid ∈ used) as Hu by (apply (aw_spaces _ _ Hw'), (aw_mapping _ _ Hw' _ _ He)).
  destruct (dead_reach _ _ _ _ sid (destroy_dead drawn e now s sid He) Hu Hr') as [[D1 D2] _].
  split.
  - intros cap a caller t Hs. apply access_not_held. unfold holds_region. rewrite Hs. apply D2.
  - intros cap r caller t Hs. unfold allocate_region.
    destruct (check_space_cap cap caller s') as [space|err] eqn:Ec.
    + apply check_space_cap_Ok in Ec as [Hc _]. rewrite Hs in Hc. by apply D1 in Hc.
    + unfold check_space_cap in Ec. rewrite <- Hs.
      destruct (space_caps s' !! _) as [[??]|]; [|by simplify_eq].
      repeat (case_bool_decide; [by simplify_eq|]).
      destruct (spaces s' !! _); by simplify_eq.
Qed.

Lemma destroyed_space_stays_dead_witness :
  let s' := (destroy_address_space sid2 exec1 8 allocated_manager).2 in
  access_region region_cap1 MemoryAccessType.Read exec1 9 s' =
    (Err (MemoryError.NoCapability (MemoryRegionId.mk 21)), s').
Proof.
  apply (@destroyed_space_stays_dead sample_hasher None allocated_manager _ exec1 sid1 sid2 8
    _ _ allocated_reach eq_refl (@asm_refl sample_hasher _ _)). reflexivity.
Defined.

(** The clean-up only knows an execution's latest space: a second
    [create_address_space] for the same execution orphans the first one, whose
    capabilities keep working after [destroy_address_space] has succeeded. *)
Theorem second_space_orphans_first :
  let '(s2, s3) :=
    match @create_address_space sample_hasher sid2 exec1 7 allocated_manager with
    | Return (_, s2) => (s2, (destroy_address_space (AddressSpaceId.mk 99) exec1 8 s2).2)
    | _ => (allocated_manager, allocated_manager)
    end in
  get_space_for_execution exec1 s2 = Some (AddressSpace.new sid2) ∧
  get_space_for_execution exec1 s3 = None ∧
  (access_region region_cap1 MemoryAccessType.Read exec1 9 s3).1 = Ok tt.
Proof. by vm_compute. Qed.

(** With hardware page tables, [destroy_address_space] leaves the page-table
    handle of the destroyed space behind: the bridge still reports its root. *)
Theorem destroy_keeps_page_table :
  let s := match @create_address_space sample_hasher sid1 exec1 5
                   (with_page_tables PageTableMode.Hardware) with
           | Return (_, s) => (destroy_address_space sid2 exec1 6 s).2
           | _ => AddressSpaceManager.new
           end in
  spaces s !! sid1 = None ∧
  (page_table_bridge s ≫= PageTableBridge.get_cr3 sid1) = Some 1.
Proof. by vm_compute. Qed.
End AddrSpaceSpec.
