(* ===== verification/SyscallGate.v ===== *)
(** * The system-call gate ([sim_kernel/src/syscall_gate.rs])

    System calls as values, the gate that executes them and its audit log.  The gate
    is generic in the kernel it is given: the traits [KernelApi]
    ([kernel_api/src/kernel.rs]) and [MemoryOps] are type classes here, which
    [Kernel.v] instantiates. *)

From S2P Require Import Prelude CoreTypes Debug Ipc.
Open Scope string_scope.
Open Scope list_scope.
Open Scope N_scope.

(** The identifiers one kernel operation may draw. *)
Module Drawn.
Record t := mk {
  task : TaskId.t;
  execution : ExecutionId.t;
  channel : ChannelId.t;
  space : AddressSpaceId.t;
  region : MemoryRegionId.t
}.
End Drawn.

(** ** The interfaces a gate is written against *)

(** What a stateful, fallible operation of a kernel [K] returns. *)
Definition op (K E T : Type) : Type := K → outcome (result T E * K).

(* kernel_api/src/kernel.rs:92-200 KernelApi *)
Class KernelApi (K : Type) := {
  api_spawn_task : Drawn.t → TaskDescriptor.t → op K KernelError.t TaskHandle.t;
  api_create_channel : Drawn.t → op K KernelError.t ChannelId.t;
  api_send_message : ChannelId.t → MessageEnvelope.t → op K KernelError.t unit;
  api_receive_message : ChannelId.t → option Duration.t → op K KernelError.t MessageEnvelope.t;
  api_now : K → Instant.t;
  api_sleep : Duration.t → op K KernelError.t unit;
  api_grant_capability : TaskId.t → Cap.t unit → op K KernelError.t unit;
  api_register_service : ServiceId.t → ChannelId.t → op K KernelError.t unit;
  api_lookup_service : ServiceId.t → K → result ChannelId.t KernelError.t
}.

(* sim_kernel/src/syscall_gate.rs:415-434 MemoryOps *)
Class MemoryOps (K : Type) := {
  create_address_space_op : Drawn.t → ExecutionId.t → op K MemoryError.t AddressSpaceCap.t;
  allocate_region_op : Drawn.t → AddressSpaceCap.t → N → MemoryPerms.t → MemoryBacking.t →
    ExecutionId.t → op K MemoryError.t MemoryRegionCap.t;
  access_region_op : MemoryRegionCap.t → MemoryAccessType.t → ExecutionId.t →
    op K MemoryError.t unit
}.

(** ** System calls *)
Module Syscall.
(* sim_kernel/src/syscall_gate.rs:17-68 Syscall *)
Inductive t :=
| SpawnTask (descriptor : TaskDescriptor.t)
| CreateChannel
| Send (channel : ChannelId.t) (message : MessageEnvelope.t)
| Recv (channel : ChannelId.t)
| Sleep (duration : Duration.t)
| Now
| Yield
| Grant (task : TaskId.t) (capability : Cap.t unit)
| RegisterService (service_id : ServiceId.t) (channel : ChannelId.t)
| LookupService (service_id : ServiceId.t)
| CreateAddressSpace
| AllocateRegion (space_cap : AddressSpaceCap.t) (size_bytes : N) (permissions : MemoryPerms.t)
    (backing : MemoryBacking.t)
| AccessRegion (region_cap : MemoryRegionCap.t) (access_type : MemoryAccessType.t).
End Syscall.

Module SyscallResult.
(* sim_kernel/src/syscall_gate.rs:71-80 SyscallResult *)
Inductive t :=
| Ok
| TaskHandle (h : TaskHandle.t)
| ChannelId (c : ChannelId.t)
| Message (m : MessageEnvelope.t)
| Instant (i : Instant.t)
| AddressSpaceCap (c : AddressSpaceCap.t)
| MemoryRegionCap (c : MemoryRegionCap.t).
End SyscallResult.

Module SyscallEvent.
(* sim_kernel/src/syscall_gate.rs:83-109 SyscallEvent *)
Inductive t :=
| Invoked (caller : ExecutionId.t) (syscall_name : string) (timestamp_nanos : N)
| Completed (caller : ExecutionId.t) (syscall_name : string) (timestamp_nanos : N)
| Rejected (caller : ExecutionId.t) (syscall_name reason : string) (timestamp_nanos : N)
| BypassAttempt (caller : ExecutionId.t) (timestamp_nanos : N).
End SyscallEvent.

Module SyscallGate.
(* sim_kernel/src/syscall_gate.rs:112-156 SyscallGate *)
Record t := mk { events : list SyscallEvent.t }.
#[global] Instance rebuild_t : Rebuild t := λ g, mk (events g).
(* sim_kernel/src/syscall_gate.rs:159-163 SyscallGate::new *)
Definition new : t := mk [].
(* sim_kernel/src/syscall_gate.rs:122-124 SyscallAuditLog::record *)
Definition record (e : SyscallEvent.t) (g : t) : t := g <| events ::= λ l, l ++ [e] |>.
(* sim_kernel/src/syscall_gate.rs:171-173 SyscallGate::clear_audit_log *)
Definition clear_audit_log (g : t) : t := g <| events := [] |>.

(* sim_kernel/src/syscall_gate.rs:333-350 SyscallGate::syscall_name *)
Definition syscall_name (c : Syscall.t) : string :=
  match c with
  | Syscall.SpawnTask _ => "SpawnTask"
  | Syscall.CreateChannel => "CreateChannel"
  | Syscall.Send _ _ => "Send"
  | Syscall.Recv _ => "Recv"
  | Syscall.Sleep _ => "Sleep"
  | Syscall.Now => "Now"
  | Syscall.Yield => "Yield"
  | Syscall.Grant _ _ => "Grant"
  | Syscall.RegisterService _ _ => "RegisterService"
  | Syscall.LookupService _ => "LookupService"
  | Syscall.CreateAddressSpace => "CreateAddressSpace"
  | Syscall.AllocateRegion _ _ _ _ => "AllocateRegion"
  | Syscall.AccessRegion _ _ => "AccessRegion"
  end.

(* sim_kernel/src/syscall_gate.rs:353-358 SyscallGate::record_bypass_attempt *)
Definition record_bypass_attempt (caller : ExecutionId.t) (timestamp_nanos : N) (g : t) : t :=
  record (SyscallEvent.BypassAttempt caller timestamp_nanos) g.
(* sim_kernel/src/syscall_gate.rs:361-372 SyscallGate::record_invoked *)
Definition record_invoked (caller : ExecutionId.t) (name : string) (timestamp_nanos : N) (g : t)
    : t := record (SyscallEvent.Invoked caller name timestamp_nanos) g.
(* sim_kernel/src/syscall_gate.rs:375-386 SyscallGate::record_completed *)
Definition record_completed (caller : ExecutionId.t) (name : string) (timestamp_nanos : N) (g : t)
    : t := record (SyscallEvent.Completed caller name timestamp_nanos) g.
(* sim_kernel/src/syscall_gate.rs:389-402 SyscallGate::record_rejected *)
Definition record_rejected (caller : ExecutionId.t) (name reason : string) (timestamp_nanos : N)
    (g : t) : t := record (SyscallEvent.Rejected caller name reason timestamp_nanos) g.

(** [Result::map] on the result of an operation. *)
Definition map_op {K E T U} (f : T → U) (m : outcome (result T E * K))
    : outcome (result U E * K) :=
  '(r, k) ← m; Return (map_ok f r, k).

Section execute.
Context {K : Type} `{KernelApi K}.

(** The dispatch of [execute]. *)
(* sim_kernel/src/syscall_gate.rs:196-238 SyscallGate::execute *)
Definition dispatch (d : Drawn.t) (c : Syscall.t) (k : K)
    : outcome (result SyscallResult.t KernelError.t * K) :=
  match c with
  | Syscall.SpawnTask descriptor =>
      map_op SyscallResult.TaskHandle (api_spawn_task d descriptor k)
  | Syscall.CreateChannel => map_op SyscallResult.ChannelId (api_create_channel d k)
  | Syscall.Send channel message =>
      map_op (λ _, SyscallResult.Ok) (api_send_message channel message k)
  | Syscall.Recv channel => map_op SyscallResult.Message (api_receive_message channel None k)
  | Syscall.Sleep duration => map_op (λ _, SyscallResult.Ok) (api_sleep duration k)
  | Syscall.Now => Return (Ok (SyscallResult.Instant (api_now k)), k)
  | Syscall.Yield => Return (Ok SyscallResult.Ok, k)
  | Syscall.Grant task capability =>
      map_op (λ _, SyscallResult.Ok) (api_grant_capability task capability k)
  | Syscall.RegisterService service_id channel =>
      map_op (λ _, SyscallResult.Ok) (api_register_service service_id channel k)
  | Syscall.LookupService service_id =>
      Return (map_ok SyscallResult.ChannelId (api_lookup_service service_id k), k)
  | Syscall.CreateAddressSpace =>
      Return (Err (KernelError.InsufficientAuthority
                     "CreateAddressSpace requires SimulatedKernel access"), k)
  | Syscall.AllocateRegion _ _ _ _ =>
      Return (Err (KernelError.InsufficientAuthority
                     "AllocateRegion requires SimulatedKernel access"), k)
  | Syscall.AccessRegion _ _ =>
      Return (Err (KernelError.InsufficientAuthority
                     "AccessRegion requires SimulatedKernel access"), k)
  end.

(* sim_kernel/src/syscall_gate.rs:179-260 SyscallGate::execute *)
Definition execute (d : Drawn.t) (caller : ExecutionId.t) (c : Syscall.t) (timestamp_nanos : N)
    (k : K) (g : t) : outcome (result SyscallResult.t KernelError.t * K * t) :=
  let name := syscall_name c in
  let g := record (SyscallEvent.Invoked caller name timestamp_nanos) g in
  '(r, k) ← dispatch d c k;
  match r with
  | Ok _ => Return (r, k, record (SyscallEvent.Completed caller name timestamp_nanos) g)
  | Err err =>
      Return (r, k, record (SyscallEvent.Rejected caller name (Debug.kernel_error err)
                              timestamp_nanos) g)
  end.

Context `{MemoryOps K} `{UuidFormat}.

(** The dispatch of [execute_with_memory]; [None] is the early return of the last
    branch. *)
(* sim_kernel/src/syscall_gate.rs:285-309 SyscallGate::execute_with_memory *)
Definition dispatch_memory (d : Drawn.t) (caller : ExecutionId.t) (c : Syscall.t) (k : K)
    : option (outcome (result SyscallResult.t MemoryError.t * K)) :=
  match c with
  | Syscall.CreateAddressSpace =>
      Some (map_op SyscallResult.AddressSpaceCap (create_address_space_op d caller k))
  | Syscall.AllocateRegion space_cap size_bytes permissions backing =>
      Some (map_op SyscallResult.MemoryRegionCap
              (allocate_region_op d space_cap size_bytes permissions backing caller k))
  | Syscall.AccessRegion region_cap access_type =>
      Some (map_op (λ _, SyscallResult.Ok) (access_region_op region_cap access_type caller k))
  | _ => None
  end.

(* sim_kernel/src/syscall_gate.rs:265-331 SyscallGate::execute_with_memory *)
Definition execute_with_memory (d : Drawn.t) (caller : ExecutionId.t) (c : Syscall.t)
    (timestamp_nanos : N) (k : K) (g : t)
    : outcome (result SyscallResult.t MemoryError.t * K * t) :=
  let name := syscall_name c in
  let g := record (SyscallEvent.Invoked caller name timestamp_nanos) g in
  match dispatch_memory d caller c k with
  | None => Return (Err (MemoryError.RegionNotFound (Drawn.region d)), k, g)
  | Some m =>
      '(r, k) ← m;
      match r with
      | Ok _ => Return (r, k, record (SyscallEvent.Completed caller name timestamp_nanos) g)
      | Err err =>
          Return (r, k, record (SyscallEvent.Rejected caller name (Debug.memory_error err)
                                  timestamp_nanos) g)
      end
  end.
End execute.
End SyscallGate.
