(* ===== verification/Kernel.v ===== *)
(** * The simulated kernel ([sim_kernel/src/lib.rs])

    [SimulatedKernel] with all its operations: time, capabilities and leases,
    resource budgets, identities and tasks, channels, services, message passing with
    fault injection, scheduling loops and memory.  The theorems are in
    [KernelProps.v], [BudgetProps.v], [MsgProps.v] and [RunProps.v]. *)

From S2P Require Import Prelude CoreTypes Debug Resources Identity Ipc Policy Queue AuditLogs.
From S2P Require Import Faults Sched Smp AddrSpace SyscallGate.
Open Scope string_scope.
Open Scope list_scope.
Open Scope N_scope.

Module TaskInfo.
(* sim_kernel/src/lib.rs:113-120 TaskInfo *)
Record t := mk { descriptor : TaskDescriptor.t; execution_id : ExecutionId.t }.
End TaskInfo.

Module Channel.
(* sim_kernel/src/lib.rs:122-125 Channel *)
Record t := mk { queue : MessageQueue.t }.
#[global] Instance rebuild_t : Rebuild t := λ c, mk (queue c).
End Channel.

Module ChannelAccess.
(* sim_kernel/src/lib.rs:127-131 ChannelAccess *)
Record t := mk { senders : gset TaskId.t; receivers : gset TaskId.t }.
#[global] Instance rebuild_t : Rebuild t := λ a, mk (senders a) (receivers a).
Definition default : t := mk ∅ ∅.
(* sim_kernel/src/lib.rs:134-136 ChannelAccess::allows_send *)
Definition allows_send (id : TaskId.t) (a : t) : bool := bool_decide (id ∈ senders a).
(* sim_kernel/src/lib.rs:138-140 ChannelAccess::allows_receive *)
Definition allows_receive (id : TaskId.t) (a : t) : bool := bool_decide (id ∈ receivers a).
(* sim_kernel/src/lib.rs:142-144 ChannelAccess::is_empty *)
Definition is_empty (a : t) : bool :=
  bool_decide (senders a = ∅) && bool_decide (receivers a = ∅).
End ChannelAccess.

Module ChannelAccessMode.
(* sim_kernel/src/lib.rs:147-152 ChannelAccessMode *)
Inductive t := Send | Receive | Both.
End ChannelAccessMode.

Module CoreServiceHandles.
(* sim_kernel/src/lib.rs:155-161 CoreServiceHandles *)
Record t := mk {
  console : ServiceId.t * ChannelId.t;
  command : ServiceId.t * ChannelId.t;
  input : ServiceId.t * ChannelId.t;
  timer : ServiceId.t * ChannelId.t
}.
End CoreServiceHandles.

Module DelayedMessage.
(* sim_kernel/src/lib.rs:163-168 DelayedMessage *)
Record t := mk { channel : ChannelId.t; message : MessageEnvelope.t; deliver_at : Instant.t }.
End DelayedMessage.

Module Kernel.
(* sim_kernel/src/lib.rs:59-111 SimulatedKernel *)
Record t := mk {
  timer : SimTimerDevice.t;
  current_time : Instant.t;
  nanos_per_tick : N;
  tasks : gmap TaskId.t TaskInfo.t;
  channels : gmap ChannelId.t Channel.t;
  channel_access : gmap ChannelId.t ChannelAccess.t;
  services : gmap ServiceId.t ChannelId.t;
  service_policies : gmap ServiceId.t VersionPolicy.t;
  fault_injector : option FaultInjector.t;
  delayed_messages : list DelayedMessage.t;
  capability_table : gmap N CapabilityMetadata.t;
  capability_audit : CapabilityAuditLog.t;
  identity_table : gmap ExecutionId.t IdentityMetadata.t;
  task_to_identity : gmap TaskId.t ExecutionId.t;
  exit_notifications : list ExitNotification.t;
  policy_engine : option PolicyEngine.t;
  policy_audit : PolicyAuditLog.t;
  resource_audit : ResourceAuditLog.t;
  cancelled_identities : gmap ExecutionId.t string;
  current_receive_task : option TaskId.t;
  scheduler : Scheduler.t;
  smp : option SmpRuntime.t;
  address_space_manager : AddressSpaceManager.t;
  channel_capacity : N;
  syscall_gate : SyscallGate.t
}.
#[global] Instance rebuild_t : Rebuild t := λ k,
  mk (timer k) (current_time k) (nanos_per_tick k) (tasks k) (channels k) (channel_access k)
     (services k) (service_policies k) (fault_injector k) (delayed_messages k)
     (capability_table k) (capability_audit k) (identity_table k) (task_to_identity k)
     (exit_notifications k) (policy_engine k) (policy_audit k) (resource_audit k)
     (cancelled_identities k) (current_receive_task k) (scheduler k) (smp k)
     (address_space_manager k) (channel_capacity k) (syscall_gate k).

(** ** Construction and configuration *)

(* sim_kernel/src/lib.rs:184-212 SimulatedKernel::with_tick_resolution *)
Definition with_tick_resolution (tick_duration : Duration.t) : t :=
  mk SimTimerDevice.new (Instant.from_nanos 0) (Duration.as_nanos tick_duration)
     ∅ ∅ ∅ ∅ ∅ None [] ∅ CapabilityAuditLog.new ∅ ∅ [] None PolicyAuditLog.new
     ResourceAuditLog.new ∅ None Scheduler.new None AddressSpaceManager.new 64 SyscallGate.new.
(** [Duration::from_micros(1)] is a thousand nanoseconds. *)
(* sim_kernel/src/lib.rs:172-174 SimulatedKernel::new *)
Definition new : outcome t :=
  d ← Duration.from_micros 1; Return (with_tick_resolution d).
(* sim_kernel/src/lib.rs:215-218 SimulatedKernel::with_channel_capacity *)
Definition with_channel_capacity (capacity : N) (k : t) : t :=
  k <| channel_capacity := N.max capacity 1 |>.
(* sim_kernel/src/lib.rs:455-458 SimulatedKernel::with_fault_injector *)
Definition with_fault_injector (i : FaultInjector.t) (k : t) : t :=
  k <| fault_injector := Some i |>.
(* sim_kernel/src/lib.rs:464-467 SimulatedKernel::with_policy_engine *)
Definition with_policy_engine (e : PolicyEngine.t) (k : t) : t :=
  k <| policy_engine := Some e |>.
(* sim_kernel/src/lib.rs:472-475 SimulatedKernel::with_scheduler_config *)
Definition with_scheduler_config (c : SchedulerConfig.t) (k : t) : t :=
  k <| scheduler := Scheduler.with_config c |>.
(* sim_kernel/src/lib.rs:771-773 SimulatedKernel::with_fault_plan *)
Definition with_fault_plan (p : FaultPlan.t) (k : t) : t :=
  with_fault_injector (FaultInjector.new p) k.
(* sim_kernel/src/lib.rs:322-328 SimulatedKernel::enable_smp *)
Definition enable_smp (core_count : N) (k : t) : t :=
  let config := SmpConfig.mk core_count (SmpConfig.quantum_ticks SmpConfig.default) in
  k <| smp := Some (SmpRuntime.new config) |>.
(* sim_kernel/src/lib.rs:523-525 SimulatedKernel::set_receive_context *)
Definition set_receive_context (id : TaskId.t) (k : t) : t :=
  k <| current_receive_task := Some id |>.
(* sim_kernel/src/lib.rs:530-532 SimulatedKernel::clear_receive_context *)
Definition clear_receive_context (k : t) : t := k <| current_receive_task := None |>.

Definition record_resource (e : ResourceEvent.t) (k : t) : t :=
  k <| resource_audit ::= ResourceAuditLog.record_event (current_time k) e |>.
Definition record_capability (e : CapabilityEvent.t) (k : t) : t :=
  k <| capability_audit ::= CapabilityAuditLog.record_event (current_time k) e |>.
(* sim_kernel/src/lib.rs:62-63 SimulatedKernel *)
Definition now_nanos (k : t) : N := Instant.as_nanos (current_time k).

(** ** Channels and services *)

(* sim_kernel/src/lib.rs:238-260 SimulatedKernel::grant_channel_access *)
Definition grant_channel_access (channel : ChannelId.t) (id : TaskId.t)
    (mode : ChannelAccessMode.t) (k : t) : result unit KernelError.t * t :=
  let entry := default ChannelAccess.default (channel_access k !! channel) in
  let entry :=
    match mode with
    | ChannelAccessMode.Send => entry <| ChannelAccess.senders ::= union {[id]} |>
    | ChannelAccessMode.Receive => entry <| ChannelAccess.receivers ::= union {[id]} |>
    | ChannelAccessMode.Both => entry <| ChannelAccess.senders ::= union {[id]} |>
                                      <| ChannelAccess.receivers ::= union {[id]} |>
    end in
  (Ok tt, k <| channel_access ::= <[channel := entry]> |>).
(* sim_kernel/src/lib.rs:263-276 SimulatedKernel::revoke_channel_access *)
Definition revoke_channel_access (channel : ChannelId.t) (id : TaskId.t) (k : t)
    : result unit KernelError.t * t :=
  match channel_access k !! channel with
  | Some entry =>
      let entry := entry <| ChannelAccess.senders ::= λ s, s ∖ {[id]} |>
                         <| ChannelAccess.receivers ::= λ s, s ∖ {[id]} |> in
      if ChannelAccess.is_empty entry
      then (Ok tt, k <| channel_access ::= delete channel |>)
      else (Ok tt, k <| channel_access ::= <[channel := entry]> |>)
  | None => (Ok tt, k)
  end.

(* sim_kernel/src/lib.rs:2025-2032 SimulatedKernel::create_channel *)
Definition create_channel (drawn : ChannelId.t) (k : t) : result ChannelId.t KernelError.t * t :=
  let channel := Channel.mk (MessageQueue.with_capacity (channel_capacity k)) in
  (Ok drawn, k <| channels ::= <[drawn := channel]> |>).

Section with_uuid.
Context `{UuidFormat}.

(* sim_kernel/src/lib.rs:2197-2209 SimulatedKernel::register_service *)
Definition register_service (service_id : ServiceId.t) (channel : ChannelId.t) (k : t)
    : result unit KernelError.t * t :=
  if bool_decide (is_Some (services k !! service_id))
  then (Err (KernelError.ServiceAlreadyRegistered (ServiceId.display service_id)), k)
  else (Ok tt, k <| services ::= <[service_id := channel]> |>).
(* sim_kernel/src/lib.rs:2211-2216 SimulatedKernel::lookup_service *)
Definition lookup_service (service_id : ServiceId.t) (k : t) : result ChannelId.t KernelError.t :=
  ok_or (services k !! service_id) (KernelError.ServiceNotFound (ServiceId.display service_id)).
(* sim_kernel/src/lib.rs:221-230 SimulatedKernel::register_service_with_schema *)
Definition register_service_with_schema (service_id : ServiceId.t) (channel : ChannelId.t)
    (policy : VersionPolicy.t) (k : t) : result unit KernelError.t * t :=
  match register_service service_id channel k with
  | (Ok _, k) => (Ok tt, k <| service_policies ::= <[service_id := policy]> |>)
  | (Err e, k) => (Err e, k)
  end.
(* sim_kernel/src/lib.rs:233-235 SimulatedKernel::set_service_schema_policy *)
Definition set_service_schema_policy (service_id : ServiceId.t) (policy : VersionPolicy.t) (k : t)
    : t := k <| service_policies ::= <[service_id := policy]> |>.

(** Sequencing of total operations with [?]. *)
Definition and_then {A B} (m : result A KernelError.t * t)
    (f : A → t → result B KernelError.t * t) : result B KernelError.t * t :=
  match m with (Ok a, k) => f a k | (Err e, k) => (Err e, k) end.

(** [drawn] are the four channel identifiers, in the order they are drawn. *)
(* sim_kernel/src/lib.rs:279-302 SimulatedKernel::bootstrap_core_services *)
Definition bootstrap_core_services
    (drawn : ChannelId.t * ChannelId.t * ChannelId.t * ChannelId.t) (k : t)
    : result CoreServiceHandles.t KernelError.t * t :=
  let '(d1, d2, d3, d4) := drawn in
  and_then (create_channel d1 k) (λ console_channel k,
  and_then (create_channel d2 k) (λ command_channel k,
  and_then (create_channel d3 k) (λ input_channel k,
  and_then (create_channel d4 k) (λ timer_channel k,
  let policy := VersionPolicy.current 1 0 in
  and_then (register_service_with_schema console_service_id console_channel policy k) (λ _ k,
  and_then (register_service_with_schema command_service_id command_channel policy k) (λ _ k,
  and_then (register_service_with_schema input_service_id input_channel policy k) (λ _ k,
  and_then (register_service_with_schema timer_service_id timer_channel policy k) (λ _ k,
  (Ok (CoreServiceHandles.mk (console_service_id, console_channel)
         (command_service_id, command_channel) (input_service_id, input_channel)
         (timer_service_id, timer_channel)), k))))))))).
End with_uuid.

(** ** Capabilities *)

(* sim_kernel/src/lib.rs:1185-1225 SimulatedKernel::validate_capability *)
Definition validate_capability (cap_id : N) (id : TaskId.t) (k : t)
    : result unit CapabilityInvalidReason.t :=
  match capability_table k !! cap_id with
  | None => Err CapabilityInvalidReason.NeverGranted
  | Some meta =>
      let expired :=
        match CapabilityMetadata.lease_expires_at_nanos meta with
        | Some expires_at => expires_at <=? now_nanos k
        | None => false
        end in
      if expired then Err CapabilityInvalidReason.LeaseExpired
      else if CapabilityMetadata.revoked meta then Err CapabilityInvalidReason.Revoked
      else if bool_decide (CapabilityMetadata.status meta ≠ CapabilityStatus.Valid) then
        if bool_decide (CapabilityMetadata.status meta = CapabilityStatus.Transferred)
        then Err CapabilityInvalidReason.TransferredAway
        else Err CapabilityInvalidReason.OwnerDead
      else if negb (bool_decide (is_Some (tasks k !! CapabilityMetadata.owner meta)))
      then Err CapabilityInvalidReason.OwnerDead
      else if bool_decide (CapabilityMetadata.owner meta ≠ id)
      then Err CapabilityInvalidReason.NeverGranted
      else Ok tt
  end.
(* sim_kernel/src/lib.rs:1477-1479 SimulatedKernel::is_capability_valid *)
Definition is_capability_valid (cap_id : N) (id : TaskId.t) (k : t) : bool :=
  is_ok (validate_capability cap_id id k).

(* sim_kernel/src/lib.rs:1228-1257 SimulatedKernel::record_capability_grant *)
Definition record_capability_grant (cap_id : N) (grantee : TaskId.t) (cap_type : string)
    (grantor : option TaskId.t) (lease : option N) (k : t) : t :=
  let metadata := CapabilityMetadata.mk cap_id grantee cap_type CapabilityStatus.Valid grantor
                    false lease in
  let k := k <| capability_table ::= <[cap_id := metadata]> |> in
  record_capability (CapabilityEvent.Granted cap_id grantor grantee cap_type) k.

(* sim_kernel/src/lib.rs:2184-2195 SimulatedKernel::grant_capability *)
Definition grant_capability (task : TaskId.t) (capability : Cap.t unit) (k : t)
    : result unit KernelError.t * t :=
  if negb (bool_decide (is_Some (tasks k !! task)))
  then (Err (KernelError.SendFailed "Task not found"), k)
  else (Ok tt, record_capability_grant (Cap.id capability) task "Generic" None None k).
(* sim_kernel/src/lib.rs:1289-1313 SimulatedKernel::grant_capability_with_lease *)
Definition grant_capability_with_lease (task : TaskId.t) (capability : Cap.t unit)
    (lease : Duration.t) (k : t) : result unit KernelError.t * t :=
  if negb (bool_decide (is_Some (tasks k !! task)))
  then (Err (KernelError.SendFailed "Target task not found"), k)
  else
    let expires_at := saturating_add (now_nanos k) (Duration.as_nanos lease) in
    (Ok tt, record_capability_grant (Cap.id capability) task "Generic" None (Some expires_at) k).

(** The common first step of revoking, dropping and delegating. *)
(* sim_kernel/src/lib.rs:1265-1268 SimulatedKernel::revoke_capability *)
Definition checked_cap (verb : string) (cap_id : N) (id : TaskId.t) (k : t)
    : result unit KernelError.t :=
  map_err (λ reason, KernelError.InvalidCapability
             ("Cannot " +:+ verb +:+ ": " +:+ CapabilityInvalidReason.debug reason))
    (validate_capability cap_id id k).

(* sim_kernel/src/lib.rs:1260-1286 SimulatedKernel::revoke_capability *)
Definition revoke_capability (cap_id : N) (owner : TaskId.t) (reason : string) (k : t)
    : result unit KernelError.t * t :=
  match checked_cap "revoke" cap_id owner k with
  | Err e => (Err e, k)
  | Ok _ =>
      match capability_table k !! cap_id with
      | Some meta =>
          let meta := meta <| CapabilityMetadata.status := CapabilityStatus.Invalid |>
                           <| CapabilityMetadata.revoked := true |> in
          let k := k <| capability_table ::= <[cap_id := meta]> |> in
          (Ok tt, record_capability (CapabilityEvent.Revoked cap_id owner
                    (CapabilityMetadata.cap_type meta) reason) k)
      | None => (Ok tt, k)
      end
  end.

(* sim_kernel/src/lib.rs:1451-1474 SimulatedKernel::drop_capability *)
Definition drop_capability (cap_id : N) (owner : TaskId.t) (k : t)
    : result unit KernelError.t * t :=
  match checked_cap "drop" cap_id owner k with
  | Err e => (Err e, k)
  | Ok _ =>
      match capability_table k !! cap_id with
      | Some meta =>
          let meta := meta <| CapabilityMetadata.status := CapabilityStatus.Invalid |> in
          let k := k <| capability_table ::= <[cap_id := meta]> |> in
          (Ok tt, record_capability (CapabilityEvent.Dropped cap_id owner
                    (CapabilityMetadata.cap_type meta)) k)
      | None => (Ok tt, k)
      end
  end.

(* sim_kernel/src/lib.rs:742-766 SimulatedKernel::evaluate_policy *)
Definition evaluate_policy (event : PolicyEvent.t) (context : PolicyContext.t) (k : t)
    : PolicyDecision.t * t :=
  match policy_engine k with
  | Some engine =>
      let decision := PolicyEngine.evaluate engine event context in
      let context_summary :=
        "actor=" +:+ IdentityMetadata.name (PolicyContext.actor_identity context)
        +:+ ", target="
        +:+ Debug.option (λ i, Debug.str (IdentityMetadata.name i))
              (PolicyContext.target_identity context)
        +:+ ", cap=" +:+ Debug.option Debug.number (PolicyContext.capability_id context) in
      (decision, k <| policy_audit ::= PolicyAuditLog.record_decision (current_time k) event
                        (PolicyEngine.name engine) decision context_summary |>)
  | None => (PolicyDecision.Allow None, k)
  end.

(** The identities of two tasks, when both are known. *)
(* sim_kernel/src/lib.rs:1372-1386 SimulatedKernel::delegate_capability *)
Definition identity_pair (a b : TaskId.t) (k : t)
    : option (IdentityMetadata.t * IdentityMetadata.t) :=
  match task_to_identity k !! a, task_to_identity k !! b with
  | Some ea, Some eb =>
      match identity_table k !! ea, identity_table k !! eb with
      | Some ia, Some ib => Some (ia, ib)
      | _, _ => None
      end
  | _, _ => None
  end.

(** The last part of [delegate_capability]: the transfer itself. *)
(* sim_kernel/src/lib.rs:1430-1447 SimulatedKernel::delegate_capability *)
Definition transfer_capability (cap_id : N) (from_task to_task : TaskId.t) (k : t)
    : result unit KernelError.t * t :=
  match capability_table k !! cap_id with
  | Some meta =>
      let cap_type := CapabilityMetadata.cap_type meta in
      let meta := meta <| CapabilityMetadata.owner := to_task |> in
      let k := k <| capability_table ::= <[cap_id := meta]> |> in
      (Ok tt, record_capability (CapabilityEvent.Delegated cap_id from_task to_task cap_type) k)
  | None => (Ok tt, k)
  end.

(* sim_kernel/src/lib.rs:1354-1448 SimulatedKernel::delegate_capability *)
Definition delegate_capability (cap_id : N) (from_task to_task : TaskId.t) (k : t)
    : result unit KernelError.t * t :=
  match checked_cap "delegate" cap_id from_task k with
  | Err e => (Err e, k)
  | Ok _ =>
      if negb (bool_decide (is_Some (tasks k !! to_task)))
      then (Err (KernelError.SendFailed "Target task not found"), k)
      else
        match identity_pair from_task to_task k with
        | None => transfer_capability cap_id from_task to_task k
        | Some (from_id, to_id) =>
            let context := PolicyContext.for_capability_delegation from_id to_id cap_id in
            let '(decision, k) := evaluate_policy PolicyEvent.OnCapabilityDelegate context k in
            match decision with
            | PolicyDecision.Deny reason =>
                (Err (KernelError.InsufficientAuthority
                        ("Policy denied capability delegation: " +:+ reason)), k)
            | PolicyDecision.Require action =>
                (Err (KernelError.InsufficientAuthority
                        ("Policy requires action before delegation: " +:+ action)), k)
            | PolicyDecision.Allow _ =>
                let k :=
                  if negb (IdentityMetadata.same_domain from_id to_id)
                  then record_capability (CapabilityEvent.CrossDomainDelegation cap_id from_task
                         (TrustDomain.name (IdentityMetadata.trust_domain from_id)) to_task
                         (TrustDomain.name (IdentityMetadata.trust_domain to_id))) k
                  else k in
                transfer_capability cap_id from_task to_task k
            end
        end
  end.

Section with_order.
Context `{HashOrder}.

(* sim_kernel/src/lib.rs:1320-1328 SimulatedKernel::expire_capability_leases *)
Definition lease_expired (now : N) (meta : CapabilityMetadata.t) : bool :=
  bool_decide (CapabilityMetadata.status meta = CapabilityStatus.Valid)
  && match CapabilityMetadata.lease_expires_at_nanos meta with
     | Some expires_at => expires_at <=? now
     | None => false
     end.
(* sim_kernel/src/lib.rs:1332-1345 SimulatedKernel::expire_capability_leases *)
Definition expire_one (k : t) (cap_id : N) : t :=
  match capability_table k !! cap_id with
  | Some meta =>
      let meta := meta <| CapabilityMetadata.status := CapabilityStatus.Invalid |> in
      let k := k <| capability_table ::= <[cap_id := meta]> |> in
      record_capability (CapabilityEvent.LeaseExpired cap_id (CapabilityMetadata.owner meta)
        (CapabilityMetadata.cap_type meta) (now_nanos k)) k
  | None => k
  end.
(* sim_kernel/src/lib.rs:1315-1346 SimulatedKernel::expire_capability_leases *)
Definition expire_capability_leases (k : t) : t :=
  let expired :=
    (filter (λ kv, lease_expired (now_nanos k) kv.2 = true) (hm_iter (capability_table k))).*1 in
  foldl expire_one k expired.

(* sim_kernel/src/lib.rs:1167-1181 SimulatedKernel::invalidate_task_capabilities *)
Definition invalidate_one (id : TaskId.t) (k : t) (cap_id : N) : t :=
  match capability_table k !! cap_id with
  | Some meta =>
      let meta := meta <| CapabilityMetadata.status := CapabilityStatus.Invalid |> in
      let k := k <| capability_table ::= <[cap_id := meta]> |> in
      record_capability (CapabilityEvent.Invalidated cap_id id
        (CapabilityMetadata.cap_type meta)) k
  | None => k
  end.
(* sim_kernel/src/lib.rs:1159-1182 SimulatedKernel::invalidate_task_capabilities *)
Definition invalidate_task_capabilities (id : TaskId.t) (k : t) : t :=
  let cap_ids :=
    (filter (λ kv, CapabilityMetadata.owner kv.2 = id) (hm_iter (capability_table k))).*1 in
  foldl (invalidate_one id) k cap_ids.

(** ** Time *)

(* sim_kernel/src/lib.rs:444-449 SimulatedKernel::sync_time_from_timer *)
Definition sync_time_from_timer (k : t) : outcome t :=
  let '(ticks, tm) := SimTimerDevice.poll_ticks (timer k) in
  let k := k <| timer := tm |> in
  nanos ← mul_u64 ticks (nanos_per_tick k);
  Return (expire_capability_leases (k <| current_time := Instant.from_nanos nanos |>)).

(** One delayed message: it stays when it is not due or its channel is full, is
    delivered when there is room, and is discarded when the channel is gone. *)
(* sim_kernel/src/lib.rs:798-812 SimulatedKernel::process_delayed_messages *)
Definition deliver_one (now : Instant.t)
    (acc : list DelayedMessage.t * gmap ChannelId.t Channel.t) (m : DelayedMessage.t)
    : list DelayedMessage.t * gmap ChannelId.t Channel.t :=
  let '(remaining, chans) := acc in
  if Instant.nanos now <? Instant.nanos (DelayedMessage.deliver_at m)
  then (remaining ++ [m], chans)
  else
    match chans !! DelayedMessage.channel m with
    | Some ch =>
        if MessageQueue.remaining_capacity (Channel.queue ch) =? 0
        then (remaining ++ [m], chans)
        else
          let q := (MessageQueue.push (DelayedMessage.message m) (Channel.queue ch)).2 in
          (remaining, <[DelayedMessage.channel m := ch <| Channel.queue := q |>]> chans)
    | None => (remaining, chans)
    end.
(* sim_kernel/src/lib.rs:794-815 SimulatedKernel::process_delayed_messages *)
Definition process_delayed_messages (k : t) : t :=
  let '(remaining, chans) :=
    foldl (deliver_one (current_time k)) ([], channels k) (delayed_messages k) in
  k <| channels := chans |> <| delayed_messages := remaining |>.

(* sim_kernel/src/lib.rs:776-791 SimulatedKernel::advance_time *)
Definition advance_time (duration : Duration.t) (k : t) : outcome t :=
  ticks_to_advance ← div_u64 (Duration.as_nanos duration) (nanos_per_tick k);
  tm ← SimTimerDevice.advance_ticks ticks_to_advance (timer k);
  k ← sync_time_from_timer (k <| timer := tm |>);
  let k := process_delayed_messages k in
  sc ← Scheduler.on_tick_advanced ticks_to_advance (scheduler k);
  Return (k <| scheduler := sc |>).

(* sim_kernel/src/lib.rs:1069-1071 SimulatedKernel::is_idle *)
Definition is_idle (k : t) : bool :=
  forallb (λ ch, MessageQueue.is_empty (Channel.queue ch)) (hm_values (channels k))
  && bool_decide (delayed_messages k = []).
(* sim_kernel/src/lib.rs:825-830 SimulatedKernel::run_until_idle *)
Fixpoint run_until_idle_loop (iterations : nat) (step : Duration.t) (k : t) : outcome t :=
  match iterations with
  | O => Return k
  | S n => if is_idle k then Return k
           else k' ← advance_time step k; run_until_idle_loop n step k'
  end.
(* sim_kernel/src/lib.rs:821-831 SimulatedKernel::run_until_idle *)
Definition run_until_idle (k : t) : outcome t :=
  step ← Duration.from_millis 10; run_until_idle_loop 1000 step k.

(** ** Resource budgets *)

(* sim_kernel/src/lib.rs:734-736 SimulatedKernel::is_identity_cancelled *)
Definition is_identity_cancelled (eid : ExecutionId.t) (k : t) : bool :=
  bool_decide (is_Some (cancelled_identities k !! eid)).

(* sim_kernel/src/lib.rs:716-727 SimulatedKernel::cancel_identity *)
Definition cancel_scheduled (eid : ExecutionId.t) (k : t) : t :=
  match list_find (λ kv, kv.2 = eid) (hm_iter (task_to_identity k)) with
  | Some (_, (task_id, _)) =>
      match smp k with
      | Some rt =>
          let timestamp_ticks := SimTimerDevice.current_ticks (timer k) in
          let sc := (MultiCoreScheduler.cancel_task_any task_id timestamp_ticks
                       (SmpRuntime.scheduler rt)).2 in
          k <| smp := Some (rt <| SmpRuntime.scheduler := sc |>) |>
      | None => k <| scheduler ::= Scheduler.cancel_task task_id |>
      end
  | None => k
  end.
(* sim_kernel/src/lib.rs:702-728 SimulatedKernel::cancel_identity *)
Definition cancel_identity (eid : ExecutionId.t) (reason : string) (k : t) : t :=
  let k := k <| cancelled_identities ::= <[eid := reason]> |> in
  let k := record_resource (ResourceEvent.CancelledDueToExhaustion eid reason) k in
  cancel_scheduled eid k.

Context `{UuidFormat}.

(** The refusals shared by all resources. *)
(* sim_kernel/src/lib.rs:546-554 SimulatedKernel::try_consume_cpu_ticks *)
Definition cancelled_error (resource operation : string) (eid : ExecutionId.t) : KernelError.t :=
  KernelError.ResourceBudgetExhausted (resource +:+ " (cancelled)") 0 0
    (ExecutionId.display eid) operation.
(* sim_kernel/src/lib.rs:574-594 SimulatedKernel::try_consume_cpu_ticks *)
Definition exhaust (resource operation : string) (eid : ExecutionId.t)
    (limit usage attempted : N) (k : t) : result unit KernelError.t * t :=
  let k := record_resource (ResourceEvent.BudgetExhausted eid resource limit attempted operation) k in
  let k := cancel_identity eid resource k in
  (Err (KernelError.ResourceBudgetExhausted resource limit usage (ExecutionId.display eid)
          operation), k).
(* sim_kernel/src/lib.rs:600-601 SimulatedKernel::try_consume_cpu_ticks *)
Definition set_usage (eid : ExecutionId.t) (u : ResourceUsage.t) (k : t) : t :=
  k <| identity_table ::= alter (λ i, i <| IdentityMetadata.usage := u |>) eid |>.

(* sim_kernel/src/lib.rs:540-615 SimulatedKernel::try_consume_cpu_ticks *)
Definition try_consume_cpu_ticks (eid : ExecutionId.t) (amount : N) (k : t)
    : outcome (result unit KernelError.t * t) :=
  if is_identity_cancelled eid k
  then Return (Err (cancelled_error "CpuTicks" "cpu_consumption" eid), k)
  else
    match identity_table k !! eid with
    | None => Return (Ok tt, k)
    | Some identity =>
        match IdentityMetadata.budget identity with
        | None => Return (Ok tt, k)
        | Some budget =>
            let current_usage :=
              Quantity.val (ResourceUsage.cpu_ticks (IdentityMetadata.usage identity)) in
            let consume :=
              let u := ResourceUsage.consume_cpu_ticks (Quantity.new amount)
                         (IdentityMetadata.usage identity) in
              let k := set_usage eid u k in
              Return (Ok tt, record_resource (ResourceEvent.CpuConsumed eid amount current_usage
                               (Quantity.val (ResourceUsage.cpu_ticks u))) k) in
            match ResourceBudget.cpu_ticks budget with
            | Some limit =>
                attempted ← add_u64 current_usage amount;
                if Quantity.val limit <? attempted
                then Return (exhaust "CpuTicks" "cpu_consumption" eid (Quantity.val limit)
                               current_usage attempted k)
                else consume
            | None => consume
            end
        end
    end.

(** The other resources are consumed one unit at a time, by the same steps: [limit_of]
    and [usage_of] select the resource, [consume] adds one unit, [event] reports it. *)
Section consume_unit.
Context {r : ResourceKind.t} (resource operation : string).
Context (limit_of : ResourceBudget.t → option (Quantity.t r)).
Context (usage_of : ResourceUsage.t → Quantity.t r).
Context (consume : ResourceUsage.t → ResourceUsage.t).
Context (event : N → N → ResourceEvent.t).

(* sim_kernel/src/lib.rs:621-696 SimulatedKernel::try_consume_pipeline_stage *)
Definition consume_unit (eid : ExecutionId.t) (k : t) : outcome (result unit KernelError.t * t) :=
  if is_identity_cancelled eid k
  then Return (Err (cancelled_error resource operation eid), k)
  else
    match identity_table k !! eid with
    | None => Return (Ok tt, k)
    | Some identity =>
        match IdentityMetadata.budget identity with
        | None => Return (Ok tt, k)
        | Some budget =>
            let current_usage := Quantity.val (usage_of (IdentityMetadata.usage identity)) in
            let accept :=
              let u := consume (IdentityMetadata.usage identity) in
              let k := set_usage eid u k in
              Return (Ok tt, record_resource (event current_usage (Quantity.val (usage_of u))) k) in
            match limit_of budget with
            | Some limit =>
                if Quantity.val limit <=? current_usage
                then
                  attempted ← add_u64 current_usage 1;
                  Return (exhaust resource operation eid (Quantity.val limit) current_usage
                            attempted k)
                else accept
            | None => accept
            end
        end
    end.
End consume_unit.

(* sim_kernel/src/lib.rs:621-696 SimulatedKernel::try_consume_pipeline_stage *)
Definition try_consume_pipeline_stage (eid : ExecutionId.t) (stage_name : string)
    : t → outcome (result unit KernelError.t * t) :=
  consume_unit "PipelineStages" ("pipeline_stage:" +:+ stage_name)
    ResourceBudget.pipeline_stages ResourceUsage.pipeline_stages
    ResourceUsage.consume_pipeline_stage
    (ResourceEvent.PipelineStageConsumed eid stage_name) eid.
(* sim_kernel/src/lib.rs:1615-1682 SimulatedKernel::try_consume_packet *)
Definition try_consume_packet (eid : ExecutionId.t) (operation : PacketOperation.t)
    : t → outcome (result unit KernelError.t * t) :=
  consume_unit "PacketCount" (PacketOperation.debug operation)
    ResourceBudget.packet_count ResourceUsage.packet_count ResourceUsage.consume_packet
    (ResourceEvent.PacketConsumed eid operation) eid.
(* sim_kernel/src/lib.rs:1685-1752 SimulatedKernel::try_consume_storage_op *)
Definition try_consume_storage_op (eid : ExecutionId.t) (operation : StorageOperation.t)
    : t → outcome (result unit KernelError.t * t) :=
  consume_unit "StorageOps" (StorageOperation.debug operation)
    ResourceBudget.storage_ops ResourceUsage.storage_ops ResourceUsage.consume_storage_op
    (ResourceEvent.StorageOpConsumed eid operation) eid.
(* sim_kernel/src/lib.rs:1526-1610 SimulatedKernel::try_consume_message *)
Definition try_consume_message (id : TaskId.t) (operation : MessageOperation.t) (k : t)
    : outcome (result unit KernelError.t * t) :=
  match task_to_identity k !! id with
  | None => Return (Ok tt, k)
  | Some eid =>
      consume_unit "MessageCount" (MessageOperation.debug operation)
        ResourceBudget.message_count ResourceUsage.message_count ResourceUsage.consume_message
        (ResourceEvent.MessageConsumed eid operation) eid k
  end.
End with_order.

(** ** Identities and tasks *)

(* sim_kernel/src/lib.rs:1485-1489 SimulatedKernel::create_identity *)
Definition create_identity (metadata : IdentityMetadata.t) (k : t) : ExecutionId.t * t :=
  let eid := IdentityMetadata.execution_id metadata in
  (eid, k <| identity_table ::= <[eid := metadata]> |>).
(* sim_kernel/src/lib.rs:1492-1494 SimulatedKernel::get_identity *)
Definition get_identity (eid : ExecutionId.t) (k : t) : option IdentityMetadata.t :=
  identity_table k !! eid.
(* sim_kernel/src/lib.rs:1497-1499 SimulatedKernel::get_task_identity *)
Definition get_task_identity (id : TaskId.t) (k : t) : option ExecutionId.t :=
  task_to_identity k !! id.
(* sim_kernel/src/lib.rs:1511-1513 SimulatedKernel::clear_exit_notifications *)
Definition clear_exit_notifications (k : t) : t := k <| exit_notifications := [] |>.

Section with_hasher.
Context `{DefaultHasher}.

(** The part that [spawn_task] and [spawn_task_with_identity] share: register the
    identity and the task, queue the task and create its address space. *)
(* sim_kernel/src/lib.rs:1997-2020 SimulatedKernel::spawn_task *)
Definition install_task (id : TaskId.t) (space : AddressSpaceId.t)
    (descriptor : TaskDescriptor.t) (metadata : IdentityMetadata.t) (k : t) : outcome t :=
  let eid := IdentityMetadata.execution_id metadata in
  let k := k <| identity_table ::= <[eid := metadata]> |> in
  let k := k <| task_to_identity ::= <[id := eid]> |> in
  let k := k <| tasks ::= <[id := TaskInfo.mk descriptor eid]> |> in
  k ← match smp k with
      | Some rt =>
          sc ← MultiCoreScheduler.enqueue id (SmpRuntime.scheduler rt);
          Return (k <| smp := Some (rt <| SmpRuntime.scheduler := sc |>) |>)
      | None => Return (k <| scheduler ::= Scheduler.enqueue id |>)
      end;
  '(_, asm) ← AddressSpaceManager.create_address_space space eid (now_nanos k)
                (address_space_manager k);
  Return (k <| address_space_manager := asm |>).

(* sim_kernel/src/lib.rs:1983-2023 SimulatedKernel::spawn_task *)
Definition spawn_task (d : Drawn.t) (descriptor : TaskDescriptor.t) (k : t)
    : outcome (result TaskHandle.t KernelError.t * t) :=
  let task_id := Drawn.task d in
  let metadata := IdentityMetadata.with_task_id task_id
    (IdentityMetadata.new (Drawn.execution d) IdentityKind.Component TrustDomain.user
       (TaskDescriptor.name descriptor) (now_nanos k)) in
  k ← install_task task_id (Drawn.space d) descriptor metadata k;
  Return (Ok (TaskHandle.mk task_id), k).

(** The policy check of a spawn: the refusal, if any. *)
(* sim_kernel/src/lib.rs:1792-1816 SimulatedKernel::spawn_task_with_identity *)
Definition check_spawn_policy (creator_id : option ExecutionId.t)
    (metadata : IdentityMetadata.t) (k : t) : result unit KernelError.t * t :=
  match creator_id with
  | None => (Ok tt, k)
  | Some creator =>
      match identity_table k !! creator with
      | None => (Ok tt, k)
      | Some creator_identity =>
          let context := PolicyContext.for_spawn creator_identity metadata in
          let '(decision, k) := evaluate_policy PolicyEvent.OnSpawn context k in
          match decision with
          | PolicyDecision.Allow _ => (Ok tt, k)
          | PolicyDecision.Deny reason =>
              (Err (KernelError.InsufficientAuthority ("Policy denied spawn: " +:+ reason)), k)
          | PolicyDecision.Require action =>
              (Err (KernelError.InsufficientAuthority
                      ("Policy requires action before spawn: " +:+ action)), k)
          end
      end
  end.
(* sim_kernel/src/lib.rs:1757-1846 SimulatedKernel::spawn_task_with_identity *)
Definition spawn_task_with_identity (d : Drawn.t) (descriptor : TaskDescriptor.t)
    (kind : IdentityKind.t) (domain : TrustDomain.t) (parent_id creator_id : option ExecutionId.t)
    (k : t) : outcome (result (TaskHandle.t * ExecutionId.t) KernelError.t * t) :=
  let task_id := Drawn.task d in
  let metadata := IdentityMetadata.with_task_id task_id
    (IdentityMetadata.new (Drawn.execution d) kind domain (TaskDescriptor.name descriptor)
       (now_nanos k)) in
  let metadata :=
    match parent_id with
    | Some parent => IdentityMetadata.with_parent parent metadata
    | None => metadata
    end in
  let inherits :=
    match parent_id with
    | Some parent =>
        match identity_table k !! parent with
        | Some parent_identity => IdentityMetadata.budget_inherits_from metadata parent_identity
        | None => true
        end
    | None => true
    end in
  if negb inherits
  then Return (Err (KernelError.InsufficientAuthority
                      "Budget inheritance violation: child budget exceeds parent"), k)
  else
    let metadata :=
      match creator_id with
      | Some creator => IdentityMetadata.with_creator creator metadata
      | None => metadata
      end in
    match check_spawn_policy creator_id metadata k with
    | (Err e, k) => Return (Err e, k)
    | (Ok _, k) =>
        k ← install_task task_id (Drawn.space d) descriptor metadata k;
        Return (Ok (TaskHandle.mk task_id, IdentityMetadata.execution_id metadata), k)
    end.
End with_hasher.

Section terminate.
Context `{HashOrder}.

(** What is recorded and cleaned up for the identity of a task that ends; [drawn] is
    the identifier [destroy_address_space] draws for its error. *)
(* sim_kernel/src/lib.rs:1123-1140 SimulatedKernel::terminate_task_with_reason *)
Definition retire_identity (drawn : AddressSpaceId.t) (id : TaskId.t) (reason : ExitReason.t)
    (k : t) : t :=
  match task_to_identity k !! id with
  | Some eid =>
      let notification := ExitNotification.mk eid (Some id) reason (now_nanos k) in
      let k := k <| exit_notifications ::= λ l, l ++ [notification] |> in
      let k := k <| address_space_manager ::= λ asm,
                 (AddressSpaceManager.destroy_address_space drawn eid (now_nanos k) asm).2 |> in
      k <| task_to_identity ::= delete id |>
  | None => k
  end.
(* sim_kernel/src/lib.rs:1114-1156 SimulatedKernel::terminate_task_with_reason *)
Definition terminate_task_with_reason (drawn : AddressSpaceId.t) (id : TaskId.t)
    (reason : ExitReason.t) (k : t) : t :=
  let scheduler_reason :=
    match reason with
    | ExitReason.Normal => SchedExitReason.Normal
    | ExitReason.Failure _ => SchedExitReason.Failed
    | ExitReason.Cancelled _ => SchedExitReason.Failed
    | ExitReason.Timeout => SchedExitReason.Failed
    end in
  let k := retire_identity drawn id reason k in
  let k := k <| tasks ::= delete id |> in
  let k := invalidate_task_capabilities id k in
  match smp k with
  | Some rt =>
      let timestamp_ticks := SimTimerDevice.current_ticks (timer k) in
      let sc := (MultiCoreScheduler.exit_task_any id scheduler_reason timestamp_ticks
                   (SmpRuntime.scheduler rt)).2 in
      k <| smp := Some (rt <| SmpRuntime.scheduler := sc |>) |>
  | None => k <| scheduler ::= Scheduler.exit_task id |>
  end.
(* sim_kernel/src/lib.rs:1106-1108 SimulatedKernel::terminate_task *)
Definition terminate_task (drawn : AddressSpaceId.t) (id : TaskId.t) (k : t) : t :=
  terminate_task_with_reason drawn id ExitReason.Normal k.
End terminate.

(** ** Message passing *)
Section messages.
Context `{HashOrder} `{UuidFormat}.

(* sim_kernel/src/lib.rs:2039-2048 SimulatedKernel::send_message *)
Definition check_send_access (channel : ChannelId.t) (message : MessageEnvelope.t) (k : t)
    : result unit KernelError.t :=
  match MessageEnvelope.source message with
  | Some source_task =>
      match channel_access k !! channel with
      | Some access =>
          if negb (ChannelAccess.allows_send source_task access)
          then Err (KernelError.SendFailed
                      ("Channel send denied for task " +:+ TaskId.display source_task))
          else Ok tt
      | None => Ok tt
      end
  | None => Ok tt
  end.
(* sim_kernel/src/lib.rs:2050-2070 SimulatedKernel::send_message *)
Definition check_schema (message : MessageEnvelope.t) (k : t) : result unit KernelError.t :=
  match service_policies k !! MessageEnvelope.destination message with
  | Some policy =>
      match VersionPolicy.check_compatibility policy (MessageEnvelope.schema_version message) with
      | Compatibility.Compatible => Ok tt
      | Compatibility.UpgradeRequired =>
          Err (KernelError.SendFailed (SchemaMismatchError.display
            (SchemaMismatchError.UpgradeRequired (MessageEnvelope.destination message)
               (VersionPolicy.min_version policy) (MessageEnvelope.schema_version message))))
      | Compatibility.Unsupported =>
          Err (KernelError.SendFailed (SchemaMismatchError.display
            (SchemaMismatchError.Unsupported (MessageEnvelope.destination message)
               (VersionPolicy.min_version policy, VersionPolicy.current_version policy)
               (MessageEnvelope.schema_version message))))
      end
  | None => Ok tt
  end.

(** The faults of a send: [Some] is the result with which the injector cuts the
    operation short. *)
(* sim_kernel/src/lib.rs:2079-2100 SimulatedKernel::send_message *)
Definition inject_send_faults (channel : ChannelId.t) (message : MessageEnvelope.t) (k : t)
    : outcome (option (result unit KernelError.t) * t) :=
  match fault_injector k with
  | None => Return (None, k)
  | Some injector =>
      if FaultInjector.should_crash_on_send injector
      then Return (Some (Err (KernelError.SendFailed "Task crashed on send")), k)
      else
        let '(dropped, injector) := FaultInjector.should_drop_message channel message injector in
        let k := k <| fault_injector := Some injector |> in
        if dropped then Return (Some (Ok tt), k)
        else
          let '(delay, injector) := FaultInjector.get_message_delay injector in
          let k := k <| fault_injector := Some injector |> in
          match delay with
          | Some delay =>
              deliver_at ← Instant.add (current_time k) delay;
              let k := k <| delayed_messages ::= λ l,
                         l ++ [DelayedMessage.mk channel message deliver_at] |> in
              Return (Some (Ok tt), k)
          | None => Return (None, k)
          end
  end.

(* sim_kernel/src/lib.rs:2102-2116 SimulatedKernel::send_message *)
Definition deliver (channel : ChannelId.t) (message : MessageEnvelope.t) (k : t)
    : outcome (result unit KernelError.t * t) :=
  match channels k !! channel with
  | None => Return (Err (KernelError.ChannelError "Channel not found"), k)
  | Some ch =>
      match MessageQueue.push message (Channel.queue ch) with
      | (Err _, _) => Return (Err (KernelError.SendFailed "Channel queue full"), k)
      | (Ok _, q) =>
          messages ← match fault_injector k with
                     | Some injector =>
                         FaultInjector.apply_reordering (MessageQueue.messages q) injector
                     | None => Return (MessageQueue.messages q)
                     end;
          let ch := ch <| Channel.queue := q <| MessageQueue.messages := messages |> |> in
          Return (Ok tt, k <| channels ::= <[channel := ch]> |>)
      end
  end.

(* sim_kernel/src/lib.rs:2072-2076 SimulatedKernel::send_message *)
Definition charge_source (message : MessageEnvelope.t) (k : t)
    : outcome (result unit KernelError.t * t) :=
  match MessageEnvelope.source message with
  | Some source_task => try_consume_message source_task MessageOperation.Send k
  | None => Return (Ok tt, k)
  end.
(* sim_kernel/src/lib.rs:2034-2117 SimulatedKernel::send_message *)
Definition send_message (channel : ChannelId.t) (message : MessageEnvelope.t) (k : t)
    : outcome (result unit KernelError.t * t) :=
  match check_send_access channel message k with
  | Err e => Return (Err e, k)
  | Ok _ =>
      match check_schema message k with
      | Err e => Return (Err e, k)
      | Ok _ =>
          try! _, k := charge_source message k in
          '(cut, k) ← inject_send_faults channel message k;
          match cut with
          | Some r => Return (r, k)
          | None => deliver channel message k
          end
      end
  end.

(* sim_kernel/src/lib.rs:2124-2133 SimulatedKernel::receive_message *)
Definition check_receive_access (channel : ChannelId.t) (k : t) : result unit KernelError.t :=
  match current_receive_task k with
  | Some task_id =>
      match channel_access k !! channel with
      | Some access =>
          if negb (ChannelAccess.allows_receive task_id access)
          then Err (KernelError.ReceiveFailed
                      ("Channel receive denied for task " +:+ TaskId.display task_id))
          else Ok tt
      | None => Ok tt
      end
  | None => Ok tt
  end.
(* sim_kernel/src/lib.rs:2135-2139 SimulatedKernel::receive_message *)
Definition charge_receiver (k : t) : outcome (result unit KernelError.t * t) :=
  match current_receive_task k with
  | Some task_id => try_consume_message task_id MessageOperation.Receive k
  | None => Return (Ok tt, k)
  end.
(* sim_kernel/src/lib.rs:2150-2162 SimulatedKernel::receive_message *)
Definition take_message (channel : ChannelId.t) (k : t)
    : outcome (result MessageEnvelope.t KernelError.t * t) :=
  match channels k !! channel with
  | None => Return (Err (KernelError.ChannelError "Channel not found"), k)
  | Some ch =>
      match MessageQueue.pop (Channel.queue ch) with
      | (None, _) => Return (Err KernelError.Timeout, k)
      | (Some message, q) =>
          let k := k <| channels ::= <[channel := ch <| Channel.queue := q |>]> |> in
          match fault_injector k with
          | Some injector =>
              injector ← FaultInjector.record_message_processed injector;
              Return (Ok message, k <| fault_injector := Some injector |>)
          | None => Return (Ok message, k)
          end
      end
  end.
(* sim_kernel/src/lib.rs:2119-2163 SimulatedKernel::receive_message *)
Definition receive_message (channel : ChannelId.t) (timeout : option Duration.t) (k : t)
    : outcome (result MessageEnvelope.t KernelError.t * t) :=
  match check_receive_access channel k with
  | Err e => Return (Err e, k)
  | Ok _ =>
      try! _, k := charge_receiver k in
      match fault_injector k with
      | Some injector =>
          if FaultInjector.should_crash_on_recv injector
          then Return (Err (KernelError.ReceiveFailed "Task crashed on recv"), k)
          else take_message channel k
      | None => take_message channel k
      end
  end.

(** The number of waiting messages (queues and delayed). *)
(* sim_kernel/src/lib.rs:1089-1095 SimulatedKernel::pending_message_count *)
Definition pending_message_count (k : t) : N :=
  sumN ((λ ch, MessageQueue.len (Channel.queue ch)) <$> hm_values (channels k))
  + len (delayed_messages k).
End messages.

(* sim_kernel/src/lib.rs:2165-2167 SimulatedKernel::now *)
Definition now (k : t) : Instant.t := current_time k.

(* sim_kernel/src/lib.rs:2169-2182 SimulatedKernel::sleep *)
Definition sleep `{HashOrder} (duration : Duration.t) (k : t)
    : outcome (result unit KernelError.t * t) :=
  ticks_to_sleep ← div_u64 (Duration.as_nanos duration) (nanos_per_tick k);
  let '(ticks, tm) := SimTimerDevice.poll_ticks (timer k) in
  let k := k <| timer := tm |> in
  wake_tick ← add_u64 ticks ticks_to_sleep;
  let k := match Scheduler.current_task (scheduler k) with
           | Some task_id => k <| scheduler ::= Scheduler.block_task task_id wake_tick |>
           | None => k
           end in
  k ← advance_time duration k;
  Return (Ok tt, k).

(* sim_kernel/src/lib.rs:2242-2245 SimulatedKernel::yield_now *)
Definition yield_now (k : t) : result unit KernelError.t * t :=
  (Ok tt, k <| scheduler ::= λ sc, (Scheduler.preempt_current sc).2 |>).

(** ** Running tasks *)
Section running.
Context `{HashOrder} `{UuidFormat}.

(** Charge the ticks of a task to its identity; [false] ends the slice. *)
(* sim_kernel/src/lib.rs:974-983 SimulatedKernel::run_for_ticks *)
Definition charge_ticks (id : TaskId.t) (ticks : N) (k : t) : outcome (bool * t) :=
  match get_task_identity id k with
  | Some eid =>
      '(r, k) ← try_consume_cpu_ticks eid ticks k;
      Return (is_ok r, k)
  | None => Return (true, k)
  end.
(** One tick of time: how far the timer moved, and the new state. *)
(* sim_kernel/src/lib.rs:966-969 SimulatedKernel::run_for_ticks *)
Definition tick_once (k : t) : outcome (N * t) :=
  let ticks_before := SimTimerDevice.current_ticks (timer k) in
  k ← advance_time (Duration.from_nanos (nanos_per_tick k)) k;
  ticks_advanced ← sub_u64 (SimTimerDevice.current_ticks (timer k)) ticks_before;
  Return (ticks_advanced, k).
(* sim_kernel/src/lib.rs:962-964 SimulatedKernel::run_for_ticks *)
Definition is_runnable (id : TaskId.t) (k : t) : bool :=
  bool_decide (Scheduler.task_state id (scheduler k) = Some TaskState.Runnable).

(** The inner loop of [run_for_ticks]: one task's time slice.  The result is the
    slice's own tick count, the running total and the state. *)
(* sim_kernel/src/lib.rs:960-984 SimulatedKernel::run_for_ticks *)
Fixpoint run_slice (fuel : nat) (id : TaskId.t) (quantum ticks task_ticks ticks_consumed : N)
    (k : t) : outcome (N * N * t) :=
  match fuel with
  | O => Diverge
  | S fuel =>
      if (task_ticks <? quantum) && (ticks_consumed <? ticks) then
        if negb (is_runnable id k) then Return (task_ticks, ticks_consumed, k)
        else
          '(ticks_advanced, k) ← tick_once k;
          ticks_consumed ← add_u64 ticks_consumed ticks_advanced;
          task_ticks ← add_u64 task_ticks ticks_advanced;
          '(ok, k) ← charge_ticks id ticks_advanced k;
          if (ok : bool) then run_slice fuel id quantum ticks task_ticks ticks_consumed k
          else Return (task_ticks, ticks_consumed, k)
      else Return (task_ticks, ticks_consumed, k)
  end.
(** The outer loop.  A slice of a runnable task takes at least one tick when the
    quantum is positive, so [ticks + 1] rounds are enough; a zero quantum never
    consumes a tick and the loop does not end. *)
(* sim_kernel/src/lib.rs:951-997 SimulatedKernel::run_for_ticks *)
Fixpoint run_loop (fuel : nat) (ticks ticks_consumed rounds : N) (k : t) : outcome (N * t) :=
  match fuel with
  | O => Diverge
  | S fuel =>
      if (ticks_consumed <? ticks) && Scheduler.has_runnable_tasks (scheduler k) then
        let '(next, sc) := Scheduler.dequeue_next (scheduler k) in
        let k := k <| scheduler := sc |> in
        match next with
        | Some id =>
            rounds ← add_u64 rounds 1;
            let quantum := SchedulerConfig.quantum_ticks (Scheduler.config (scheduler k)) in
            '(task_ticks, ticks_consumed, k) ←
              run_slice (S (N.to_nat ticks)) id quantum ticks 0 ticks_consumed k;
            let k :=
              if is_runnable id k && (quantum <=? task_ticks)
              then k <| scheduler ::= λ sc, (Scheduler.preempt_current sc).2 |> else k in
            run_loop fuel ticks ticks_consumed rounds k
        | None => Return (rounds, k)
        end
      else Return (rounds, k)
  end.

(** *** Multi-core *)

(** Every idle core selects a task, in core order. *)
(* sim_kernel/src/lib.rs:853-866 SimulatedKernel::run_for_ticks_smp *)
Definition fill_cores (acc : N * SmpRuntime.t) (core_idx : nat) : outcome (N * SmpRuntime.t) :=
  let '(rounds, rt) := acc in
  let c := CoreId.mk (N.of_nat core_idx) in
  current ← MultiCoreScheduler.core_current_task c (SmpRuntime.scheduler rt);
  match current with
  | Some _ => Return (rounds, rt)
  | None =>
      ts ← PerCoreTimeSources.ticks c (SmpRuntime.time rt);
      '(selected, sc) ← MultiCoreScheduler.dequeue_next c ts (SmpRuntime.scheduler rt);
      let rt := rt <| SmpRuntime.scheduler := sc |> in
      match selected with
      | Some _ => rounds ← add_u64 rounds 1; Return (rounds, rt)
      | None => Return (rounds, rt)
      end
  end.
(** The busy cores advance by one tick; what has to be charged is collected. *)
(* sim_kernel/src/lib.rs:871-883 SimulatedKernel::run_for_ticks_smp *)
Definition tick_core (acc : list (CoreId.t * TaskId.t * N * bool) * SmpRuntime.t)
    (core_idx : nat) : outcome (list (CoreId.t * TaskId.t * N * bool) * SmpRuntime.t) :=
  let '(ticked, rt) := acc in
  let c := CoreId.mk (N.of_nat core_idx) in
  current ← MultiCoreScheduler.core_current_task c (SmpRuntime.scheduler rt);
  match current with
  | Some id =>
      rt ← SmpRuntime.advance_core_time c 1 rt;
      timestamp_ticks ← PerCoreTimeSources.ticks c (SmpRuntime.time rt);
      preempt ← MultiCoreScheduler.should_preempt c (SmpRuntime.scheduler rt);
      Return (ticked ++ [(c, id, timestamp_ticks, preempt)], rt)
  | None => Return (ticked, rt)
  end.
(* sim_kernel/src/lib.rs:885-904 SimulatedKernel::run_for_ticks_smp *)
Definition settle_core (k : t) (e : CoreId.t * TaskId.t * N * bool) : outcome t :=
  let '(c, id, timestamp_ticks, preempt) := e in
  '(cancelled, k) ←
    match get_task_identity id k with
    | Some eid =>
        '(r, k) ← try_consume_cpu_ticks eid 1 k;
        if is_err r then
          rt ← expect (smp k);
          let sc := (MultiCoreScheduler.cancel_task_any id timestamp_ticks
                       (SmpRuntime.scheduler rt)).2 in
          Return (true, k <| smp := Some (rt <| SmpRuntime.scheduler := sc |>) |>)
        else Return (false, k)
    | None => Return (false, k)
    end;
  if negb cancelled && preempt then
    rt ← expect (smp k);
    sc ← MultiCoreScheduler.preempt_current c PreemptionReason.QuantumExpired timestamp_ticks
           (SmpRuntime.scheduler rt);
    Return (k <| smp := Some (rt <| SmpRuntime.scheduler := sc |>) |>)
  else Return k.

(** One round of the loop: fill the cores, let a tick pass, settle. *)
(* sim_kernel/src/lib.rs:853-904 SimulatedKernel::run_for_ticks_smp *)
Definition smp_round (core_count : N) (rounds : N) (k : t) : outcome (N * t) :=
  let indices := seq 0 (N.to_nat core_count) in
  rt ← expect (smp k);
  '(rounds, rt) ← fold_outcome fill_cores indices (rounds, rt);
  let k := k <| smp := Some rt |> in
  k ← advance_time (Duration.from_nanos (nanos_per_tick k)) k;
  rt ← expect (smp k);
  '(ticked, rt) ← fold_outcome tick_core indices ([], rt);
  let k := k <| smp := Some rt |> in
  k ← fold_outcome settle_core ticked k;
  Return (rounds, k).
(* sim_kernel/src/lib.rs:843-851 SimulatedKernel::run_for_ticks_smp *)
Definition smp_has_work (k : t) : bool :=
  match smp k with
  | Some rt => MultiCoreScheduler.has_runnable_tasks (SmpRuntime.scheduler rt)
  | None => false
  end.
(** Each round takes one tick: at most [ticks] rounds. *)
(* sim_kernel/src/lib.rs:842-907 SimulatedKernel::run_for_ticks_smp *)
Fixpoint smp_loop (fuel : nat) (core_count ticks ticks_consumed rounds : N) (k : t)
    : outcome (N * t) :=
  match fuel with
  | O => Diverge
  | S fuel =>
      if ticks_consumed <? ticks then
        if negb (smp_has_work k) then Return (rounds, k)
        else
          '(rounds, k) ← smp_round core_count rounds k;
          smp_loop fuel core_count ticks (saturating_add ticks_consumed 1) rounds k
      else Return (rounds, k)
  end.
(* sim_kernel/src/lib.rs:833-908 SimulatedKernel::run_for_ticks_smp *)
Definition run_for_ticks_smp (ticks : N) (k : t) : outcome (N * t) :=
  match smp k with
  | None => Return (0, k)
  | Some rt =>
      let core_count := MultiCoreScheduler.core_count (SmpRuntime.scheduler rt) in
      smp_loop (S (N.to_nat ticks)) core_count ticks 0 0 k
  end.
(* sim_kernel/src/lib.rs:913-928 SimulatedKernel::run_for_steps_smp *)
Fixpoint smp_steps (steps : nat) (steps_executed : N) (k : t) : outcome (N * t) :=
  match steps with
  | O => Return (steps_executed, k)
  | S n =>
      if negb (smp_has_work k) then Return (steps_executed, k)
      else
        '(_, k) ← run_for_ticks_smp 1 k;
        steps_executed ← add_u64 steps_executed 1;
        smp_steps n steps_executed k
  end.
(* sim_kernel/src/lib.rs:910-929 SimulatedKernel::run_for_steps_smp *)
Definition run_for_steps_smp (steps : N) (k : t) : outcome (N * t) :=
  smp_steps (N.to_nat steps) 0 k.

(* sim_kernel/src/lib.rs:943-998 SimulatedKernel::run_for_ticks *)
Definition run_for_ticks (ticks : N) (k : t) : outcome (N * t) :=
  match smp k with
  | Some _ => run_for_ticks_smp ticks k
  | None => run_loop (S (N.to_nat ticks)) ticks 0 0 k
  end.

(** The inner loop of [run_for_steps]: at most a quantum of ticks. *)
(* sim_kernel/src/lib.rs:1030-1056 SimulatedKernel::run_for_steps *)
Fixpoint run_quantum (quantum : nat) (id : TaskId.t) (k : t) : outcome t :=
  match quantum with
  | O => Return k
  | S n =>
      if negb (is_runnable id k) then Return k
      else
        '(ticks_advanced, k) ← tick_once k;
        '(ok, k) ← charge_ticks id ticks_advanced k;
        if negb ok then Return k
        else if Scheduler.should_preempt id (scheduler k) then Return k
        else run_quantum n id k
  end.
(* sim_kernel/src/lib.rs:1019-1065 SimulatedKernel::run_for_steps *)
Fixpoint steps_loop (steps : nat) (steps_executed : N) (k : t) : outcome (N * t) :=
  match steps with
  | O => Return (steps_executed, k)
  | S n =>
      if negb (Scheduler.has_runnable_tasks (scheduler k)) then Return (steps_executed, k)
      else
        let '(next, sc) := Scheduler.dequeue_next (scheduler k) in
        let k := k <| scheduler := sc |> in
        match next with
        | Some id =>
            steps_executed ← add_u64 steps_executed 1;
            let quantum := SchedulerConfig.quantum_ticks (Scheduler.config (scheduler k)) in
            k ← run_quantum (N.to_nat quantum) id k;
            let k :=
              if is_runnable id k
              then k <| scheduler ::= λ sc, (Scheduler.preempt_current sc).2 |> else k in
            steps_loop n steps_executed k
        | None => steps_loop n steps_executed k
        end
  end.
(* sim_kernel/src/lib.rs:1012-1066 SimulatedKernel::run_for_steps *)
Definition run_for_steps (steps : N) (k : t) : outcome (N * t) :=
  match smp k with
  | Some _ => run_for_steps_smp steps k
  | None => steps_loop (N.to_nat steps) 0 k
  end.
End running.

(** ** Memory *)
Section memory.
Context `{DefaultHasher}.

(* sim_kernel/src/lib.rs:1861-1869 SimulatedKernel::create_address_space *)
Definition create_address_space (drawn : AddressSpaceId.t) (eid : ExecutionId.t) (k : t)
    : outcome (result AddressSpaceCap.t MemoryError.t * t) :=
  '(cap, asm) ← AddressSpaceManager.create_address_space drawn eid (now_nanos k)
                  (address_space_manager k);
  Return (Ok cap, k <| address_space_manager := asm |>).

(** The memory limit of an identity, if it has one. *)
(* sim_kernel/src/lib.rs:1894-1896 SimulatedKernel::allocate_region *)
Definition memory_limit (eid : ExecutionId.t) (k : t) : option (IdentityMetadata.t * MemoryUnits) :=
  identity ← identity_table k !! eid;
  budget ← IdentityMetadata.budget identity;
  limit ← ResourceBudget.memory_units budget;
  Some (identity, limit).

(** Budget first, then the address space: the charge is not undone when the space
    refuses. *)
(* sim_kernel/src/lib.rs:1889-1913 SimulatedKernel::allocate_region *)
Definition charge_memory (size_bytes : N) (eid : ExecutionId.t) (k : t)
    : result unit MemoryError.t * t :=
  match memory_limit eid k with
  | Some (identity, limit) =>
      let units_needed : MemoryUnits := Quantity.new (div_ceil size_bytes 4096) in
      let usage := IdentityMetadata.usage identity in
      let available := Quantity.saturating_sub limit (ResourceUsage.memory_units usage) in
      if negb (Quantity.leb units_needed available)
      then (Err (MemoryError.BudgetExhausted (Quantity.val units_needed)
                   (Quantity.val available)), k)
      else
        let usage := usage <| ResourceUsage.memory_units ::= λ u,
                              Quantity.saturating_add u units_needed |> in
        (Ok tt, set_usage eid usage k)
  | None => (Ok tt, k)
  end.
(* sim_kernel/src/lib.rs:1915-1923 SimulatedKernel::allocate_region *)
Definition allocate_in_space (cap : AddressSpaceCap.t) (region : MemoryRegion.t)
    (eid : ExecutionId.t) (k : t) : outcome (result MemoryRegionCap.t MemoryError.t * t) :=
  '(r, asm) ← AddressSpaceManager.allocate_region cap region eid (now_nanos k)
                (address_space_manager k);
  Return (r, k <| address_space_manager := asm |>).
(* sim_kernel/src/lib.rs:1880-1924 SimulatedKernel::allocate_region *)
Definition allocate_region (drawn : MemoryRegionId.t) (cap : AddressSpaceCap.t) (size_bytes : N)
    (permissions : MemoryPerms.t) (backing : MemoryBacking.t) (eid : ExecutionId.t) (k : t)
    : outcome (result MemoryRegionCap.t MemoryError.t * t) :=
  if size_bytes =? 0 then Return (Err (MemoryError.InvalidRegionSize 0), k)
  else
    match charge_memory size_bytes eid k with
    | (Err e, k) => Return (Err e, k)
    | (Ok _, k) =>
        allocate_in_space cap (MemoryRegion.new drawn size_bytes permissions backing) eid k
    end.
(* sim_kernel/src/lib.rs:1936-1949 SimulatedKernel::access_region *)
Definition access_region (cap : MemoryRegionCap.t) (access_type : MemoryAccessType.t)
    (eid : ExecutionId.t) (k : t) : result unit MemoryError.t * t :=
  let '(r, asm) := AddressSpaceManager.access_region cap access_type eid (now_nanos k)
                     (address_space_manager k) in
  (r, k <| address_space_manager := asm |>).
(* sim_kernel/src/lib.rs:1955-1959 SimulatedKernel::activate_address_space *)
Definition activate_address_space (drawn : AddressSpaceId.t) (eid : ExecutionId.t) (k : t)
    : result unit MemoryError.t * t :=
  let '(r, asm) := AddressSpaceManager.activate_space drawn eid (now_nanos k)
                     (address_space_manager k) in
  (r, k <| address_space_manager := asm |>).

(** The system-call variant checks the budget by a checked sum and records the
    exhaustion. *)
(* sim_kernel/src/lib.rs:2284-2316 SimulatedKernel::allocate_region_op *)
Definition charge_memory_op (size_bytes : N) (eid : ExecutionId.t) (k : t)
    : outcome (result unit MemoryError.t * t) :=
  match memory_limit eid k with
  | Some (identity, limit) =>
      let units_needed := div_ceil size_bytes 4096 in
      let current_usage :=
        Quantity.val (ResourceUsage.memory_units (IdentityMetadata.usage identity)) in
      attempted ← add_u64 current_usage units_needed;
      if Quantity.val limit <? attempted
      then
        let k := record_resource (ResourceEvent.BudgetExhausted eid "MemoryUnits"
                   (Quantity.val limit) attempted "allocate_region") k in
        Return (Err (MemoryError.BudgetExhausted units_needed
                       (saturating_sub (Quantity.val limit) current_usage)), k)
      else
        Return (Ok tt, set_usage eid (ResourceUsage.consume_memory_units
                         (Quantity.new units_needed) (IdentityMetadata.usage identity)) k)
  | None => Return (Ok tt, k)
  end.
(* sim_kernel/src/lib.rs:2272-2324 SimulatedKernel::allocate_region_op *)
Definition allocate_region_op (drawn : MemoryRegionId.t) (cap : AddressSpaceCap.t)
    (size_bytes : N) (permissions : MemoryPerms.t) (backing : MemoryBacking.t)
    (eid : ExecutionId.t) (k : t) : outcome (result MemoryRegionCap.t MemoryError.t * t) :=
  let region := MemoryRegion.new drawn size_bytes permissions backing in
  try! _, k := charge_memory_op size_bytes eid k in
  allocate_in_space cap region eid k.
End memory.

(** ** The kernel behind the system-call gate *)
(* sim_kernel/src/lib.rs:1982-2217 KernelApi for SimulatedKernel *)
#[global] Instance kernel_api `{HashOrder} `{UuidFormat} `{DefaultHasher} : KernelApi t := {|
  api_spawn_task := spawn_task;
  api_create_channel d k := Return (create_channel (Drawn.channel d) k);
  api_send_message := send_message;
  api_receive_message := receive_message;
  api_now := now;
  api_sleep := sleep;
  api_grant_capability task cap k := Return (grant_capability task cap k);
  api_register_service sid ch k := Return (register_service sid ch k);
  api_lookup_service := lookup_service
|}.
(* sim_kernel/src/lib.rs:2260-2340 MemoryOps for SimulatedKernel *)
#[global] Instance memory_ops `{DefaultHasher} : MemoryOps t := {|
  create_address_space_op d := create_address_space (Drawn.space d);
  SyscallGate.allocate_region_op d := allocate_region_op (Drawn.region d);
  access_region_op cap a eid k := Return (access_region cap a eid k)
|}.
(* sim_kernel/src/lib.rs:2220-2228 SimulatedKernel::create_task *)
Definition create_task `{DefaultHasher} (d : Drawn.t) (name : string)
    (capabilities : list (Cap.t unit)) (k : t) : outcome (result TaskId.t KernelError.t * t) :=
  try! handle, k := spawn_task d (TaskDescriptor.mk name capabilities) k in
  Return (Ok (TaskHandle.task_id handle), k).
End Kernel.
