(* ===== verification/UserTask.v ===== *)
(** * User tasks and the trap ([sim_kernel/src/user_task.rs])

    The trap through which a user task enters the kernel, and the context of a user
    task; then system calls as messages ([kernel_api/src/syscalls.rs]): a client that offers
    the kernel's calls over a transport, and the server at its other end.  The theorems are
    in [SyscallProps.v]. *)

From S2P Require Import Prelude CoreTypes Debug Resources Identity Ipc Queue AddrSpace.
From S2P Require Import SyscallGate Kernel.
Open Scope string_scope.
Open Scope list_scope.
Open Scope N_scope.

(** The derived [Debug] of the system calls that [default_trap] does not support. *)
Definition syscall_debug `{UuidFormat} (c : Syscall.t) : string :=
  match c with
  | Syscall.SpawnTask d => Debug.struct "SpawnTask" [("descriptor", Debug.task_descriptor d)]
  | Syscall.Sleep d => Debug.struct "Sleep" [("duration", Debug.duration d)]
  | Syscall.Grant task cap =>
      Debug.struct "Grant" [("task", Debug.task_id task); ("capability", Debug.cap cap)]
  | Syscall.RegisterService sid ch =>
      Debug.struct "RegisterService"
        [("service_id", Debug.service_id sid); ("channel", Debug.channel_id ch)]
  | Syscall.LookupService sid =>
      Debug.struct "LookupService" [("service_id", Debug.service_id sid)]
  | Syscall.AllocateRegion cap size perms backing =>
      Debug.struct "AllocateRegion"
        [("space_cap", Debug.address_space_cap cap); ("size_bytes", Debug.number size);
         ("permissions", Debug.memory_perms perms); ("backing", Debug.memory_backing backing)]
  | Syscall.AccessRegion cap a =>
      Debug.struct "AccessRegion"
        [("region_cap", Debug.memory_region_cap cap); ("access_type", Debug.memory_access_type a)]
  | Syscall.CreateChannel | Syscall.Send _ _ | Syscall.Recv _ | Syscall.Now | Syscall.Yield
  | Syscall.CreateAddressSpace => SyscallGate.syscall_name c
  end.

Module UserTask.
Import Kernel.
Section trap.
Context `{HashOrder} `{UuidFormat} `{DefaultHasher}.

(** A supported call: invoked, executed, and completed or rejected. *)
(* sim_kernel/src/user_task.rs:55-76 default_trap *)
Definition audited_call (caller : ExecutionId.t) (name : string) (timestamp_nanos : N)
    (body : Kernel.t → outcome (result SyscallResult.t KernelError.t * Kernel.t)) (k : Kernel.t)
    : outcome (result SyscallResult.t KernelError.t * Kernel.t) :=
  let k := k <| syscall_gate ::= SyscallGate.record_invoked caller name timestamp_nanos |> in
  '(r, k) ← body k;
  match r with
  | Ok _ =>
      Return (r, k <| syscall_gate ::= SyscallGate.record_completed caller name timestamp_nanos |>)
  | Err err =>
      Return (r, k <| syscall_gate ::= SyscallGate.record_rejected caller name
                       (Debug.kernel_error err) timestamp_nanos |>)
  end.

(* sim_kernel/src/user_task.rs:46-136 default_trap *)
Definition default_trap (d : Drawn.t) (caller : ExecutionId.t) (c : Syscall.t) (k : Kernel.t)
    : outcome (result SyscallResult.t KernelError.t * Kernel.t) :=
  let timestamp_nanos := Instant.as_nanos (now k) in
  match c with
  | Syscall.CreateChannel =>
      audited_call caller "CreateChannel" timestamp_nanos
        (λ k, SyscallGate.map_op SyscallResult.ChannelId
                (Return (create_channel (Drawn.channel d) k))) k
  | Syscall.Send channel message =>
      audited_call caller "Send" timestamp_nanos
        (λ k, SyscallGate.map_op (λ _, SyscallResult.Ok) (send_message channel message k)) k
  | Syscall.Recv channel =>
      audited_call caller "Recv" timestamp_nanos
        (λ k, SyscallGate.map_op SyscallResult.Message (receive_message channel None k)) k
  | other =>
      let name := syscall_debug other in
      let k := k <| syscall_gate ::= SyscallGate.record_rejected caller name
                      "Not supported in default_trap" timestamp_nanos |> in
      Return (Err (KernelError.InsufficientAuthority
                     ("Syscall " +:+ name +:+ " not supported in default_trap")), k)
  end.
End trap.
End UserTask.

Module UserTaskContext.
(** [trap_entry] is a function of the kernel, as the source's [TrapEntry]. *)
(* sim_kernel/src/user_task.rs:139-146 UserTaskContext *)
Record t := mk {
  task_id : TaskId.t;
  execution_id : ExecutionId.t;
  user_stack : list N;
  kernel_stack : list N;
  trap_entry : Drawn.t → ExecutionId.t → Syscall.t → Kernel.t →
    outcome (result SyscallResult.t KernelError.t * Kernel.t)
}.
(* sim_kernel/src/user_task.rs:150-164 UserTaskContext::new *)
Definition new (task_id : TaskId.t) (execution_id : ExecutionId.t)
    (user_stack_bytes kernel_stack_bytes : N) trap : t :=
  mk task_id execution_id (replicate (N.to_nat user_stack_bytes) 0)
     (replicate (N.to_nat kernel_stack_bytes) 0) trap.
(* sim_kernel/src/user_task.rs:167-169 UserTaskContext::user_stack_size *)
Definition user_stack_size (c : t) : N := len (user_stack c).
(* sim_kernel/src/user_task.rs:172-174 UserTaskContext::kernel_stack_size *)
Definition kernel_stack_size (c : t) : N := len (kernel_stack c).
(* sim_kernel/src/user_task.rs:177-183 UserTaskContext::syscall *)
Definition syscall (d : Drawn.t) (c : Syscall.t) (u : t) (k : Kernel.t)
    : outcome (result SyscallResult.t KernelError.t * Kernel.t) :=
  trap_entry u d (execution_id u) c k.
End UserTaskContext.

(* sim_kernel/src/lib.rs:341-359 SimulatedKernel::spawn_user_task *)
Definition spawn_user_task `{HashOrder} `{UuidFormat} `{DefaultHasher} (d : Drawn.t)
    (name : string) (user_stack_bytes kernel_stack_bytes : N) (k : Kernel.t)
    : outcome (result UserTaskContext.t KernelError.t * Kernel.t) :=
  try! handle, k := Kernel.spawn_task d (TaskDescriptor.new name) k in
  match Kernel.get_task_identity (TaskHandle.task_id handle) k with
  | None => Return (Err (KernelError.SpawnFailed "Failed to get task identity"), k)
  | Some eid =>
      Return (Ok (UserTaskContext.new (TaskHandle.task_id handle) eid user_stack_bytes
                    kernel_stack_bytes UserTask.default_trap), k)
  end.

(** ** System calls as messages *)

Module SyscallErrorKind.
(* kernel_api/src/syscalls.rs:109-125 SyscallErrorKind *)
Inductive t :=
| SpawnFailed | ChannelError | SendFailed | ReceiveFailed | Timeout | ServiceNotFound | ServiceAlreadyRegistered
| InsufficientAuthority | InvalidCapability | ResourceExhausted | ResourceBudgetExceeded | ResourceBudgetExhausted | Unknown.
End SyscallErrorKind.

Module SyscallError.
(* kernel_api/src/syscalls.rs:83-93 SyscallError *)
Record t := mk {
  kind : SyscallErrorKind.t;
  message : string;
  resource_type : option string;
  limit : option N;
  usage : option N;
  identity : option string;
  operation : option string
}.
(* kernel_api/src/syscalls.rs:95-107 SyscallError::new *)
Definition new (kind : SyscallErrorKind.t) (message : string) : t := mk kind message None None None None None.
(* kernel_api/src/syscalls.rs:127-192 From<KernelError> for SyscallError *)
Definition from (e : KernelError.t) : t :=
  match e with
  | KernelError.SpawnFailed m => new SyscallErrorKind.SpawnFailed m
  | KernelError.ChannelError m => new SyscallErrorKind.ChannelError m
  | KernelError.SendFailed m => new SyscallErrorKind.SendFailed m
  | KernelError.ReceiveFailed m => new SyscallErrorKind.ReceiveFailed m
  | KernelError.Timeout => new SyscallErrorKind.Timeout "Operation timed out"
  | KernelError.ServiceNotFound m => new SyscallErrorKind.ServiceNotFound m
  | KernelError.ServiceAlreadyRegistered m => new SyscallErrorKind.ServiceAlreadyRegistered m
  | KernelError.InsufficientAuthority m => new SyscallErrorKind.InsufficientAuthority m
  | KernelError.InvalidCapability m => new SyscallErrorKind.InvalidCapability m
  | KernelError.ResourceExhausted m => new SyscallErrorKind.ResourceExhausted m
  | KernelError.ResourceBudgetExceeded r l u i o =>
      mk SyscallErrorKind.ResourceBudgetExceeded "Resource budget exceeded" (Some r) (Some l) (Some u) (Some i) (Some o)
  | KernelError.ResourceBudgetExhausted r l u i o =>
      mk SyscallErrorKind.ResourceBudgetExhausted "Resource budget exhausted" (Some r) (Some l) (Some u) (Some i) (Some o)
  end.
(* kernel_api/src/syscalls.rs:194-228 From<SyscallError> for KernelError *)
Definition into (e : t) : KernelError.t :=
  let budget make :=
    make (default "Unknown" (resource_type e)) (default 0 (limit e)) (default 0 (usage e))
         (default "unknown" (identity e)) (default "unknown" (operation e)) : KernelError.t in
  match kind e with
  | SyscallErrorKind.SpawnFailed => KernelError.SpawnFailed (message e)
  | SyscallErrorKind.ChannelError => KernelError.ChannelError (message e)
  | SyscallErrorKind.SendFailed => KernelError.SendFailed (message e)
  | SyscallErrorKind.ReceiveFailed => KernelError.ReceiveFailed (message e)
  | SyscallErrorKind.Timeout => KernelError.Timeout
  | SyscallErrorKind.ServiceNotFound => KernelError.ServiceNotFound (message e)
  | SyscallErrorKind.ServiceAlreadyRegistered => KernelError.ServiceAlreadyRegistered (message e)
  | SyscallErrorKind.InsufficientAuthority => KernelError.InsufficientAuthority (message e)
  | SyscallErrorKind.InvalidCapability => KernelError.InvalidCapability (message e)
  | SyscallErrorKind.ResourceExhausted => KernelError.ResourceExhausted (message e)
  | SyscallErrorKind.ResourceBudgetExceeded => budget KernelError.ResourceBudgetExceeded
  | SyscallErrorKind.ResourceBudgetExhausted => budget KernelError.ResourceBudgetExhausted
  | SyscallErrorKind.Unknown => KernelError.ReceiveFailed (message e)
  end.
End SyscallError.

Module SyscallRequestPayload.
(* kernel_api/src/syscalls.rs:27-57 SyscallRequestPayload *)
Inductive t :=
| SpawnTask (descriptor : TaskDescriptor.t)
| CreateChannel
| SendMessage (channel : ChannelId.t) (message : MessageEnvelope.t)
| ReceiveMessage (channel : ChannelId.t) (timeout : option Duration.t)
| Now
| Sleep (duration : Duration.t)
| GrantCapability (task : TaskId.t) (capability : Cap.t unit)
| RegisterService (service_id : ServiceId.t) (channel : ChannelId.t)
| LookupService (service_id : ServiceId.t).
End SyscallRequestPayload.

Module SyscallRequest.
(* kernel_api/src/syscalls.rs:20-25 SyscallRequest *)
Record t := mk { request_id : MessageId.t; payload : SyscallRequestPayload.t }.
End SyscallRequest.

(** Over the type of the errors, which is [SyscallError.t] in the messages. *)
Module SyscallResponsePayload.
(* kernel_api/src/syscalls.rs:66-81 SyscallResponsePayload, SyscallResult *)
Inductive t (E : Type) :=
| SpawnTask (r : result TaskHandle.t E)
| CreateChannel (r : result ChannelId.t E)
| SendMessage (r : result unit E)
| ReceiveMessage (r : result MessageEnvelope.t E)
| Now (r : result Instant.t E)
| Sleep (r : result unit E)
| GrantCapability (r : result unit E)
| RegisterService (r : result unit E)
| LookupService (r : result ChannelId.t E).
Arguments SpawnTask {E} r.
Arguments CreateChannel {E} r.
Arguments SendMessage {E} r.
Arguments ReceiveMessage {E} r.
Arguments Now {E} r.
Arguments Sleep {E} r.
Arguments GrantCapability {E} r.
Arguments RegisterService {E} r.
Arguments LookupService {E} r.
End SyscallResponsePayload.

Module SyscallResponse.
(* kernel_api/src/syscalls.rs:59-64 SyscallResponse *)
Record t := mk { request_id : MessageId.t; payload : SyscallResponsePayload.t SyscallError.t }.
End SyscallResponse.

Module SyscallCodecError.
(* kernel_api/src/syscalls.rs:230-239 SyscallCodecError *)
Inductive t :=
| UnexpectedAction (action : string)
| SchemaMismatch (expected actual : SchemaVersion.t)
| Payload (message : string).
(* kernel_api/src/syscalls.rs:241-253 Display for SyscallCodecError *)
Definition display (e : t) : string :=
  match e with
  | UnexpectedAction action => "Unexpected syscall action: " +:+ action
  | SchemaMismatch expected actual =>
      "Schema mismatch: expected " +:+ SchemaVersion.display expected +:+ ", got " +:+ SchemaVersion.display actual
  | Payload message => "Payload error: " +:+ message
  end.
End SyscallCodecError.

Module SyscallCodec.
(* kernel_api/src/syscalls.rs:16-16 SYSCALL_REQUEST_ACTION *)
Definition SYSCALL_REQUEST_ACTION : string := "kernel.syscall.request".
(* kernel_api/src/syscalls.rs:17-17 SYSCALL_RESPONSE_ACTION *)
Definition SYSCALL_RESPONSE_ACTION : string := "kernel.syscall.response".
(* kernel_api/src/syscalls.rs:18-18 SYSCALL_SCHEMA_VERSION *)
Definition SYSCALL_SCHEMA_VERSION : SchemaVersion.t := SchemaVersion.new 1 0.
(* kernel_api/src/syscalls.rs:255-264 SyscallCodec *)
Record t := new { service_id : ServiceId.t }.
Section with_json.
Context `{JsonCodec SyscallRequest.t} `{JsonCodec SyscallResponse.t}.
(** [id] is the identifier that the envelope draws. *)
(* kernel_api/src/syscalls.rs:266-279 SyscallCodec::encode_request *)
Definition encode_request (id : MessageId.t) (request : SyscallRequest.t) (c : t)
    : result MessageEnvelope.t SyscallCodecError.t :=
  match MessagePayload.new request with
  | Ok payload => Ok (MessageEnvelope.new id (service_id c) SYSCALL_REQUEST_ACTION SYSCALL_SCHEMA_VERSION payload)
  | Err err => Err (SyscallCodecError.Payload err)
  end.
(* kernel_api/src/syscalls.rs:281-296 SyscallCodec::encode_response *)
Definition encode_response (id : MessageId.t) (response : SyscallResponse.t) (correlation_id : MessageId.t) (c : t)
    : result MessageEnvelope.t SyscallCodecError.t :=
  match MessagePayload.new response with
  | Ok payload =>
      Ok (MessageEnvelope.with_correlation correlation_id
            (MessageEnvelope.new id (service_id c) SYSCALL_RESPONSE_ACTION SYSCALL_SCHEMA_VERSION payload))
  | Err err => Err (SyscallCodecError.Payload err)
  end.
(** The checks that both decoders make first. *)
Definition check (action : string) (m : MessageEnvelope.t) : option SyscallCodecError.t :=
  if negb (bool_decide (MessageEnvelope.action m = action))
  then Some (SyscallCodecError.UnexpectedAction (MessageEnvelope.action m))
  else if negb (SchemaVersion.is_compatible_with (MessageEnvelope.schema_version m) SYSCALL_SCHEMA_VERSION)
  then Some (SyscallCodecError.SchemaMismatch SYSCALL_SCHEMA_VERSION (MessageEnvelope.schema_version m))
  else None.
(* kernel_api/src/syscalls.rs:298-319 SyscallCodec::decode_request *)
Definition decode_request (m : MessageEnvelope.t) : result SyscallRequest.t SyscallCodecError.t :=
  match check SYSCALL_REQUEST_ACTION m with
  | Some e => Err e
  | None => map_err SyscallCodecError.Payload (MessagePayload.deserialize (MessageEnvelope.payload m))
  end.
(* kernel_api/src/syscalls.rs:321-342 SyscallCodec::decode_response *)
Definition decode_response (m : MessageEnvelope.t) : result SyscallResponse.t SyscallCodecError.t :=
  match check SYSCALL_RESPONSE_ACTION m with
  | Some e => Err e
  | None => map_err SyscallCodecError.Payload (MessagePayload.deserialize (MessageEnvelope.payload m))
  end.
End with_json.
End SyscallCodec.

(** What the handling of one request draws: the identifier of the response's envelope, and what the
    kernel draws. *)
Module ServeDrawn.
Record t := mk { envelope : MessageId.t; kernel : Drawn.t }.
End ServeDrawn.

(* kernel_api/src/syscalls.rs:349-353 SyscallTransport *)
Class SyscallTransport (T : Type) := {
  transport_send : ServeDrawn.t → MessageEnvelope.t → op T KernelError.t unit;
  transport_receive : option Duration.t → op T KernelError.t MessageEnvelope.t
}.

Module SyscallServer.
Section with_kernel.
Context {K : Type} `{KernelApi K} `{JsonCodec SyscallRequest.t} `{JsonCodec SyscallResponse.t}.
(* kernel_api/src/syscalls.rs:355-364 SyscallServer *)
Record t := new { kernel : K; codec : SyscallCodec.t }.
#[global] Instance rebuild_t : Rebuild t := λ s, new (kernel s) (codec s).
(** The call of the kernel that a request asks for; [f] converts the errors. *)
(* kernel_api/src/syscalls.rs:375-424 SyscallServer::handle_message (the match) *)
Definition perform {E} (f : KernelError.t → E) (d : Drawn.t) (p : SyscallRequestPayload.t) (k : K)
    : outcome (SyscallResponsePayload.t E * K) :=
  let wrap {A} (c : result A E → SyscallResponsePayload.t E) (m : outcome (result A KernelError.t * K)) :=
    '(r, k) ← m; Return (c (map_err f r), k) in
  match p with
  | SyscallRequestPayload.SpawnTask descriptor => wrap SyscallResponsePayload.SpawnTask (api_spawn_task d descriptor k)
  | SyscallRequestPayload.CreateChannel => wrap SyscallResponsePayload.CreateChannel (api_create_channel d k)
  | SyscallRequestPayload.SendMessage channel message =>
      wrap SyscallResponsePayload.SendMessage (api_send_message channel message k)
  | SyscallRequestPayload.ReceiveMessage channel timeout =>
      wrap SyscallResponsePayload.ReceiveMessage (api_receive_message channel timeout k)
  | SyscallRequestPayload.Now => Return (SyscallResponsePayload.Now (Ok (api_now k)), k)
  | SyscallRequestPayload.Sleep duration => wrap SyscallResponsePayload.Sleep (api_sleep duration k)
  | SyscallRequestPayload.GrantCapability task capability =>
      wrap SyscallResponsePayload.GrantCapability (api_grant_capability task capability k)
  | SyscallRequestPayload.RegisterService service_id channel =>
      wrap SyscallResponsePayload.RegisterService (api_register_service service_id channel k)
  | SyscallRequestPayload.LookupService service_id =>
      wrap SyscallResponsePayload.LookupService (Return (api_lookup_service service_id k, k))
  end.
(* kernel_api/src/syscalls.rs:366-434 SyscallServer::handle_message *)
Definition handle_message (d : ServeDrawn.t) (message : MessageEnvelope.t) : op t KernelError.t MessageEnvelope.t := λ s,
  match SyscallCodec.decode_request message with
  | Err err => Return (Err (KernelError.ReceiveFailed ("Syscall decode failed: " +:+ SyscallCodecError.display err)), s)
  | Ok request =>
      '(payload, k) ← perform SyscallError.from (ServeDrawn.kernel d) (SyscallRequest.payload request) (kernel s);
      let s := s <| kernel := k |> in
      let response := SyscallResponse.mk (SyscallRequest.request_id request) payload in
      Return (map_err (λ err, KernelError.SendFailed ("Syscall encode failed: " +:+ SyscallCodecError.display err))
                (SyscallCodec.encode_response (ServeDrawn.envelope d) response (MessageEnvelope.id message) (codec s)), s)
  end.
End with_kernel.
Arguments t K : clear implicits.
End SyscallServer.

(** What one call of the client draws. *)
Module CallDrawn.
Record t := mk { request_id : MessageId.t; envelope : MessageId.t; serve : ServeDrawn.t }.
End CallDrawn.

(** The methods of [KernelApi] for the client; those that take [&self] change the transport too, which
    is in a [RefCell]. *)
Module SyscallClient.
Section with_transport.
Context {T : Type} `{SyscallTransport T} `{JsonCodec SyscallRequest.t} `{JsonCodec SyscallResponse.t}.
(* kernel_api/src/syscalls.rs:445-457 SyscallClient *)
Record t := new { transport : T; codec : SyscallCodec.t }.
#[global] Instance rebuild_t : Rebuild t := λ c, new (transport c) (codec c).
(** An operation on the transport. *)
Definition on_transport {A} (f : op T KernelError.t A) : op t KernelError.t A := λ c,
  '(r, tr) ← f (transport c); Return (r, c <| transport := tr |>).
(* kernel_api/src/syscalls.rs:459-485 SyscallClient::round_trip *)
Definition round_trip (d : CallDrawn.t) (payload : SyscallRequestPayload.t) : op t KernelError.t SyscallResponse.t := λ c,
  let request := SyscallRequest.mk (CallDrawn.request_id d) payload in
  match SyscallCodec.encode_request (CallDrawn.envelope d) request (codec c) with
  | Err err => Return (Err (KernelError.SendFailed ("Syscall encode failed: " +:+ SyscallCodecError.display err)), c)
  | Ok message =>
      try! _, c := on_transport (transport_send (CallDrawn.serve d) message) c in
      try! response_message, c := on_transport (transport_receive None) c in
      match SyscallCodec.decode_response response_message with
      | Err err => Return (Err (KernelError.ReceiveFailed ("Syscall decode failed: " +:+ SyscallCodecError.display err)), c)
      | Ok response =>
          if negb (bool_decide (SyscallResponse.request_id response = CallDrawn.request_id d))
          then Return (Err (KernelError.ReceiveFailed "Syscall response request_id mismatch"), c)
          else Return (Ok response, c)
      end
  end.
(* kernel_api/src/syscalls.rs:487-495 SyscallClient::extract *)
Definition extract {A} (f : SyscallResponsePayload.t SyscallError.t → option (result A SyscallError.t))
    (response : SyscallResponse.t) : result A KernelError.t :=
  match f (SyscallResponse.payload response) with
  | None => Err (KernelError.ReceiveFailed "Syscall response payload mismatch")
  | Some r => map_err SyscallError.into r
  end.
Definition call {A} (f : SyscallResponsePayload.t SyscallError.t → option (result A SyscallError.t)) (d : CallDrawn.t)
    (payload : SyscallRequestPayload.t) : op t KernelError.t A := λ c,
  try! response, c := round_trip d payload c in Return (extract f response, c).
(* kernel_api/src/syscalls.rs:507-513 SyscallClient::spawn_task *)
Definition call_spawn_task d descriptor := call (λ p, match p with SyscallResponsePayload.SpawnTask r => Some r | _ => None end)
  d (SyscallRequestPayload.SpawnTask descriptor).
(* kernel_api/src/syscalls.rs:515-521 SyscallClient::create_channel *)
Definition call_create_channel d := call (λ p, match p with SyscallResponsePayload.CreateChannel r => Some r | _ => None end)
  d SyscallRequestPayload.CreateChannel.
(* kernel_api/src/syscalls.rs:523-533 SyscallClient::send_message *)
Definition call_send_message d channel message := call (λ p, match p with SyscallResponsePayload.SendMessage r => Some r | _ => None end)
  d (SyscallRequestPayload.SendMessage channel message).
(* kernel_api/src/syscalls.rs:535-546 SyscallClient::receive_message *)
Definition call_receive_message d channel timeout := call (λ p, match p with SyscallResponsePayload.ReceiveMessage r => Some r | _ => None end)
  d (SyscallRequestPayload.ReceiveMessage channel timeout).
(** The one method that cannot fail, and panics instead. *)
(* kernel_api/src/syscalls.rs:548-558 SyscallClient::now *)
Definition call_now (d : CallDrawn.t) (c : t) : outcome (Instant.t * t) :=
  '(r, c) ← round_trip d SyscallRequestPayload.Now c;
  match r with
  | Ok response =>
      match SyscallResponse.payload response with
      | SyscallResponsePayload.Now (Ok i) => Return (i, c)
      | _ => Panic
      end
  | Err _ => Panic
  end.
(* kernel_api/src/syscalls.rs:560-566 SyscallClient::sleep *)
Definition call_sleep d duration := call (λ p, match p with SyscallResponsePayload.Sleep r => Some r | _ => None end)
  d (SyscallRequestPayload.Sleep duration).
(* kernel_api/src/syscalls.rs:568-575 SyscallClient::grant_capability *)
Definition call_grant_capability d task capability := call (λ p, match p with SyscallResponsePayload.GrantCapability r => Some r | _ => None end)
  d (SyscallRequestPayload.GrantCapability task capability).
(* kernel_api/src/syscalls.rs:577-590 SyscallClient::register_service *)
Definition call_register_service d service_id channel := call (λ p, match p with SyscallResponsePayload.RegisterService r => Some r | _ => None end)
  d (SyscallRequestPayload.RegisterService service_id channel).
(* kernel_api/src/syscalls.rs:592-598 SyscallClient::lookup_service *)
Definition call_lookup_service d service_id := call (λ p, match p with SyscallResponsePayload.LookupService r => Some r | _ => None end)
  d (SyscallRequestPayload.LookupService service_id).
End with_transport.
Arguments t T : clear implicits.
End SyscallClient.

Module LoopbackTransport.
Section with_kernel.
Context {K : Type} `{KernelApi K} `{JsonCodec SyscallRequest.t} `{JsonCodec SyscallResponse.t}.
(* kernel_api/src/syscalls.rs:601-605 LoopbackTransport *)
Record t := mk { server : SyscallServer.t K; pending : option MessageEnvelope.t }.
#[global] Instance rebuild_t : Rebuild t := λ l, mk (server l) (pending l).
(* kernel_api/src/syscalls.rs:607-614 LoopbackTransport::new *)
Definition new (server : SyscallServer.t K) : t := mk server None.
(* kernel_api/src/syscalls.rs:616-628 SyscallTransport for LoopbackTransport *)
#[global] Instance loopback : SyscallTransport t := {|
  transport_send d message l :=
    '(r, s) ← SyscallServer.handle_message d message (server l);
    let l := l <| server := s |> in
    match r with
    | Ok response => Return (Ok tt, l <| pending := Some response |>)
    | Err e => Return (Err e, l)
    end;
  transport_receive _ l :=
    match pending l with
    | Some response => Return (Ok response, l <| pending := None |>)
    | None => Return (Err (KernelError.ReceiveFailed "No syscall response pending"), l)
    end
|}.
End with_kernel.
Arguments t K : clear implicits.
End LoopbackTransport.
