(* ===== verification/KernelSpec.v ===== *)
(** * An abstract machine for the kernel, and refinement

    The kernel's operations are long and interleave bookkeeping with authority.  This
    file gives a small abstract machine over the part of the state that matters for
    safety (a [KView.t]): tasks, capabilities, budgets, channels, time, scheduler and
    address spaces, with one guarded action per elementary change.  The refinement
    theorem says that every kernel operation is a sequence of such actions, so an
    invariant of the machine is an invariant of the kernel whatever is called in
    which order. *)

From S2P Require Import Prelude CoreTypes Debug Resources Identity Ipc Policy Queue AuditLogs.
From S2P Require Import Faults Sched SchedProps Smp AddrSpace SyscallGate Kernel.
Open Scope string_scope.
Open Scope list_scope.
Open Scope N_scope.

Module KView.
Record t := mk {
  ticks : N;
  time : N;
  npt : N;
  tasks : gmap TaskId.t TaskInfo.t;
  channels : gmap ChannelId.t Channel.t;
  delayed : list DelayedMessage.t;
  caps : gmap N CapabilityMetadata.t;
  idents : gmap ExecutionId.t IdentityMetadata.t;
  t2i : gmap TaskId.t ExecutionId.t;
  cancelled : gmap ExecutionId.t string;
  sched : Scheduler.t;
  asm : AddressSpaceManager.t
}.
#[global] Instance rebuild_t : Rebuild t := λ v,
  mk (ticks v) (time v) (npt v) (tasks v) (channels v) (delayed v) (caps v) (idents v) (t2i v)
     (cancelled v) (sched v) (asm v).
End KView.

Definition view (k : Kernel.t) : KView.t :=
  KView.mk (SimTimerDevice.ticks (Kernel.timer k)) (Kernel.now_nanos k) (Kernel.nanos_per_tick k)
    (Kernel.tasks k) (Kernel.channels k) (Kernel.delayed_messages k) (Kernel.capability_table k)
    (Kernel.identity_table k) (Kernel.task_to_identity k) (Kernel.cancelled_identities k)
    (Kernel.scheduler k) (Kernel.address_space_manager k).

(** A table entry that confers authority at time [now]. *)
Definition live_entry (now : N) (m : CapabilityMetadata.t) : Prop :=
  CapabilityMetadata.status m = CapabilityStatus.Valid ∧
  CapabilityMetadata.revoked m = false ∧
  match CapabilityMetadata.lease_expires_at_nanos m with Some t => now < t | None => True end.

Definition retire_entry (id : TaskId.t) (m : CapabilityMetadata.t) : CapabilityMetadata.t :=
  if bool_decide (CapabilityMetadata.owner m = id)
  then m <| CapabilityMetadata.status := CapabilityStatus.Invalid |> else m.

Module Act.
Inductive t :=
| Tick (n : N)
| Sched (o : SchedOp.t)
| Grant (c : N) (m : CapabilityMetadata.t)
| Invalidate (c : N) (revoke : bool)
| Transfer (c : N) (to_task : TaskId.t)
| NewChannel (c : ChannelId.t) (capacity : N)
| Push (c : ChannelId.t) (m : MessageEnvelope.t)
| Reorder (c : ChannelId.t) (l : list MessageEnvelope.t)
| Take (c : ChannelId.t) (m : MessageEnvelope.t)
| Delayed (l : list DelayedMessage.t)
| Usage (e : ExecutionId.t) (u : ResourceUsage.t)
| Spawn (id : TaskId.t) (info : TaskInfo.t) (meta : IdentityMetadata.t)
| Identity (meta : IdentityMetadata.t)
| Cancel (e : ExecutionId.t) (reason : string)
| Retire (id : TaskId.t)
| Memory (o : AsmOp.t).
End Act.

Import KView.
Inductive astep : Act.t → KView.t → KView.t → Prop :=
| step_tick n v sc (HO : HashOrder) :
    Scheduler.on_tick_advanced n (sched v) = Return sc →
    astep (Act.Tick n) v
      (v <| ticks := ticks v + n |> <| time := (ticks v + n) * npt v |> <| sched := sc |>)
| step_sched o v sc (HO : HashOrder) :
    (∀ d, o ≠ SchedOp.Tick d) → fresh_ids o (sched v) → SchedOp.exec o (sched v) = Return sc →
    astep (Act.Sched o) v (v <| sched := sc |>)
| step_grant c m v :
    CapabilityMetadata.status m = CapabilityStatus.Valid →
    is_Some (tasks v !! CapabilityMetadata.owner m) →
    astep (Act.Grant c m) v (v <| caps ::= <[c := m]> |>)
| step_invalidate c (revoke : bool) m v :
    caps v !! c = Some m →
    astep (Act.Invalidate c revoke) v
      (v <| caps ::= <[c := m <| CapabilityMetadata.status := CapabilityStatus.Invalid |>
                             <| CapabilityMetadata.revoked ::= orb revoke |> ]> |>)
| step_transfer c m to_task v :
    caps v !! c = Some m → live_entry (time v) m → is_Some (tasks v !! to_task) →
    astep (Act.Transfer c to_task) v
      (v <| caps ::= <[c := m <| CapabilityMetadata.owner := to_task |> ]> |>)
| step_new_channel c n v :
    astep (Act.NewChannel c n) v
      (v <| channels ::= <[c := Channel.mk (MessageQueue.with_capacity n)]> |>)
| step_push c m ch q v :
    channels v !! c = Some ch → MessageQueue.push m (Channel.queue ch) = (Ok tt, q) →
    astep (Act.Push c m) v (v <| channels ::= <[c := Channel.mk q]> |>)
| step_reorder c l ch v :
    channels v !! c = Some ch → l ≡ₚ MessageQueue.messages (Channel.queue ch) →
    astep (Act.Reorder c l) v
      (v <| channels ::= <[c := Channel.mk ((Channel.queue ch) <| MessageQueue.messages := l |>)]> |>)
| step_take c m ch q v :
    channels v !! c = Some ch → MessageQueue.pop (Channel.queue ch) = (Some m, q) →
    astep (Act.Take c m) v (v <| channels ::= <[c := Channel.mk q]> |>)
| step_delayed l v : astep (Act.Delayed l) v (v <| delayed := l |>)
| step_usage e u i b v :
    idents v !! e = Some i → IdentityMetadata.budget i = Some b →
    (ResourceSpec.within (IdentityMetadata.usage i) b → ResourceSpec.within u b) →
    astep (Act.Usage e u) v
      (v <| idents ::= alter (λ i, i <| IdentityMetadata.usage := u |>) e |>)
| step_spawn id info meta v :
    tasks v !! id = None → IdentityMetadata.budget meta = None →
    astep (Act.Spawn id info meta) v
      (v <| idents ::= <[IdentityMetadata.execution_id meta := meta]> |>
         <| t2i ::= <[id := IdentityMetadata.execution_id meta]> |>
         <| tasks ::= <[id := info]> |>)
| step_identity meta v :
    astep (Act.Identity meta) v
      (v <| idents ::= <[IdentityMetadata.execution_id meta := meta]> |>)
| step_cancel e reason v : astep (Act.Cancel e reason) v (v <| cancelled ::= <[e := reason]> |>)
| step_retire id v :
    astep (Act.Retire id) v
      (v <| t2i ::= delete id |> <| tasks ::= delete id |> <| caps ::= fmap (retire_entry id) |>)
| step_memory o a v (DH : DefaultHasher) :
    AsmOp.exec o (asm v) = Return a → astep (Act.Memory o) v (v <| asm := a |>).

Inductive steps : list Act.t → KView.t → KView.t → Prop :=
| steps_nil v : steps [] v v
| steps_cons a tr v1 v2 v3 : astep a v1 v2 → steps tr v2 v3 → steps (a :: tr) v1 v3.

Lemma steps_app tr1 tr2 v1 v2 v3 : steps tr1 v1 v2 → steps tr2 v2 v3 → steps (tr1 ++ tr2) v1 v3.
Proof. induction 1; intros; [done|]. simpl. econstructor; eauto. Qed.

(** [refines P k k']: the machine can go from the view of [k] to that of [k'] by
    actions that all satisfy [P]. *)
Definition refines (P : Act.t → Prop) (k k' : Kernel.t) : Prop :=
  ∃ tr, Forall P tr ∧ steps tr (view k) (view k').

#[export] Instance refines_preorder P : PreOrder (refines P).
Proof.
  split.
  - intros k. exists []. split; constructor.
  - intros k1 k2 k3 (tr1 & P1 & S1) (tr2 & P2 & S2). exists (tr1 ++ tr2).
    split; [by apply Forall_app|]. by eapply steps_app.
Qed.

Lemma refines_mono (P Q : Act.t → Prop) k k' :
  (∀ a, P a → Q a) → refines P k k' → refines Q k k'.
Proof. intros HPQ (tr & Htr & Hs). exists tr. split; [by eapply Forall_impl|done]. Qed.

Lemma refines_view P k k' : view k' = view k → refines P k k'.
Proof. intros E. exists []. rewrite E. split; constructor. Qed.

Lemma refines_one (P : Act.t → Prop) a k k' : P a → astep a (view k) (view k') → refines P k k'.
Proof. intros Ha Hs. exists [a]. split; [by repeat constructor|]. by econstructor; [|constructor]. Qed.

(** Rule induction for invariants of the machine. *)
Lemma steps_invariant (P : Act.t → Prop) (I : KView.t → Prop) tr v v' :
  (∀ a v1 v2, P a → I v1 → astep a v1 v2 → I v2) →
  Forall P tr → steps tr v v' → I v → I v'.
Proof.
  intros Hstep HP Hs. induction Hs as [|a tr v1 v2 v3 Ha Hs IH]; [done|].
  apply Forall_cons in HP as [Pa HP]. eauto.
Qed.

(** Everything but granting capabilities and registering identities from outside. *)
Definition quiet (a : Act.t) : Prop :=
  match a with Act.Grant _ _ | Act.Identity _ => False | _ => True end.

(** ** Capability bookkeeping *)
Definition with_caps (k : Kernel.t) (c : gmap N CapabilityMetadata.t) (l : CapabilityAuditLog.t)
    : Kernel.t := k <| Kernel.capability_table := c |> <| Kernel.capability_audit := l |>.

Lemma foldl_caps_frame (f : Kernel.t → N → Kernel.t) l k :
  (∀ k c, ∃ t lg, f k c = with_caps k t lg) → ∃ t lg, foldl f k l = with_caps k t lg.
Proof.
  intros Hf. apply (foldl_ind (λ k', ∃ t lg, k' = with_caps k t lg)).
  - exists (Kernel.capability_table k), (Kernel.capability_audit k). by destruct k.
  - intros k1 c _ (t & lg & ->). destruct (Hf (with_caps k t lg) c) as (t' & lg' & ->).
    eexists _, _. reflexivity.
Qed.

Lemma expire_one_frame k c : ∃ t lg, Kernel.expire_one k c = with_caps k t lg.
Proof.
  unfold Kernel.expire_one. destruct (Kernel.capability_table k !! c); [by eexists _, _|].
  exists (Kernel.capability_table k), (Kernel.capability_audit k). by destruct k.
Qed.

Lemma invalidate_one_frame id k c : ∃ t lg, Kernel.invalidate_one id k c = with_caps k t lg.
Proof.
  unfold Kernel.invalidate_one. destruct (Kernel.capability_table k !! c); [by eexists _, _|].
  exists (Kernel.capability_table k), (Kernel.capability_audit k). by destruct k.
Qed.

Lemma expire_frame `{HashOrder} k :
  ∃ t lg, Kernel.expire_capability_leases k = with_caps k t lg.
Proof. apply foldl_caps_frame. intros. apply expire_one_frame. Qed.

(** Expiring leases only invalidates entries: as actions on any view with the same
    capability table. *)
Lemma expire_fold_steps l k v :
  caps v = Kernel.capability_table k →
  ∃ tr, Forall quiet tr ∧
    steps tr v (v <| caps := Kernel.capability_table (foldl Kernel.expire_one k l) |>).
Proof.
  revert k v. induction l as [|c l IH]; intros k v Hv; simpl.
  { exists []. split; [constructor|]. rewrite <- Hv. destruct v. constructor. }
  set (k' := Kernel.expire_one k c).
  destruct (IH k' (v <| caps := Kernel.capability_table k' |>)) as (tr & Htr & Hs); [done|].
  unfold k', Kernel.expire_one in *.
  destruct (Kernel.capability_table k !! c) as [m|] eqn:Em.
  - exists (Act.Invalidate c false :: tr). split; [by constructor|]. econstructor; [|exact Hs].
    rewrite <- Hv in Em. simpl. rewrite <- Hv. exact (step_invalidate c false m v Em).
  - exists tr. split; [done|]. by rewrite <- Hv in Hs; destruct v.
Qed.

(** ** Time *)
Lemma deliver_fold_steps now l rem chans v :
  channels v = chans →
  let r := foldl (Kernel.deliver_one now) (rem, chans) l in
  ∃ tr, Forall quiet tr ∧ steps tr v (v <| channels := r.2 |>).
Proof.
  revert rem chans v. induction l as [|m l IH]; intros rem chans v Hv; simpl.
  { exists []. split; [constructor|]. rewrite <- Hv. destruct v. constructor. }
  destruct (_ <? _); [by apply IH|].
  destruct (chans !! DelayedMessage.channel m) as [ch|] eqn:Ech; [|by apply IH].
  destruct (MessageQueue.remaining_capacity (Channel.queue ch) =? 0) eqn:Ecap; [by apply IH|].
  set (q := (MessageQueue.push (DelayedMessage.message m) (Channel.queue ch)).2).
  destruct (IH rem (<[DelayedMessage.channel m := ch <| Channel.queue := q |>]> chans)
    (v <| channels := <[DelayedMessage.channel m := ch <| Channel.queue := q |>]> chans |>))
    as (tr & Htr & Hs); [done|].
  exists (Act.Push (DelayedMessage.channel m) (DelayedMessage.message m) :: tr).
  split; [by constructor|]. econstructor; [|exact Hs].
  assert (MessageQueue.push (DelayedMessage.message m) (Channel.queue ch) = (Ok tt, q)) as Hp.
  { unfold q, MessageQueue.push. apply N.eqb_neq in Ecap.
    unfold MessageQueue.remaining_capacity, saturating_sub in Ecap.
    destruct (N.leb_spec (MessageQueue.capacity (Channel.queue ch))
      (MessageQueue.len (Channel.queue ch))); [lia|done]. }
  rewrite <- Hv in Ech |- *. exact (step_push _ _ _ _ v Ech Hp).
Qed.

Definition with_messages (k : Kernel.t) c d : Kernel.t :=
  k <| Kernel.channels := c |> <| Kernel.delayed_messages := d |>.

Lemma process_delayed_frame k :
  let r := foldl (Kernel.deliver_one (Kernel.current_time k)) ([], Kernel.channels k)
             (Kernel.delayed_messages k) in
  Kernel.process_delayed_messages k = with_messages k r.2 r.1.
Proof. simpl. unfold Kernel.process_delayed_messages. by destruct (foldl _ _ _). Qed.

(** The effect of [advance_time], spelled out. *)
Lemma advance_time_inv `{HashOrder} d k k' :
  Kernel.advance_time d k = Return k' →
  ∃ n t lg c dm sc,
    Kernel.nanos_per_tick k ≠ 0 ∧ n = Duration.as_nanos d / Kernel.nanos_per_tick k ∧
    (let k1 := k <| Kernel.timer := SimTimerDevice.mk (SimTimerDevice.ticks (Kernel.timer k) + n) |>
                 <| Kernel.current_time := Instant.mk
                      ((SimTimerDevice.ticks (Kernel.timer k) + n) * Kernel.nanos_per_tick k) |> in
     let r := foldl (Kernel.deliver_one (Kernel.current_time k1)) ([], Kernel.channels k)
                (Kernel.delayed_messages k) in
     Kernel.expire_capability_leases k1 = with_caps k1 t lg ∧ (dm, c) = r ∧
     Scheduler.on_tick_advanced n (Kernel.scheduler k) = Return sc ∧
     k' = (with_messages (with_caps k1 t lg) c dm) <| Kernel.scheduler := sc |>).
Proof.
  unfold Kernel.advance_time.
  intros (n & Hn%div_u64_Return & (tm & Htm & (k2 & Hk2 & (sc & Hsc & [= <-])%bind_Return)%bind_Return)%bind_Return)%bind_Return.
  apply bind_Return in Htm as (x & Hx & [= <-]).
  unfold checked_add in Hx. destruct (_ <=? u64_max); [|done]. injection Hx as <-.
  unfold Kernel.sync_time_from_timer in Hk2. simpl in Hk2.
  apply bind_Return in Hk2 as (ns & [-> _]%mul_u64_Return & [= Hk2]).
  match type of Hk2 with Kernel.expire_capability_leases ?x = _ => set (k1 := x) in * end.
  destruct (expire_frame k1) as (t & lg & E). rewrite E in Hk2. subst k2.
  rewrite process_delayed_frame in *. simpl in *.
  destruct (foldl _ _ _) as [dm c] eqn:Er.
  exists n, t, lg, c, dm, sc. destruct Hn as [? ->].
  split_and!; [done|done|exact E| |done|done].
  rewrite <- Er. done.
Qed.

Lemma advance_time_refines `{HashOrder} d k k' :
  Kernel.advance_time d k = Return k' → refines quiet k k'.
Proof.
  intros (n & t & lg & c & dm & sc & _ & _ & He & Hr & Hs & ->)%advance_time_inv.
  match type of He with Kernel.expire_capability_leases ?x = _ => set (k1 := x) in * end.
  destruct (expire_fold_steps (filter (λ kv, Kernel.lease_expired (Kernel.now_nanos k1) kv.2 = true)
    (hm_iter (Kernel.capability_table k1))).*1 k1 (view k)) as (tr1 & T1 & S1); [done|].
  fold (Kernel.expire_capability_leases k1) in S1. rewrite He in S1. simpl in S1.
  destruct (deliver_fold_steps (Kernel.current_time k1) (Kernel.delayed_messages k) []
    (Kernel.channels k) ((view k) <| caps := t |>)) as (tr2 & T2 & S2); [done|].
  rewrite <- Hr in S2. simpl in S2.
  exists (tr1 ++ tr2 ++ [Act.Delayed dm; Act.Tick n]). split.
  { rewrite !Forall_app. split_and!; [done|done|by repeat constructor]. }
  eapply steps_app; [exact S1|]. eapply steps_app; [exact S2|].
  econstructor; [constructor|]. econstructor; [|constructor].
  exact (step_tick n ((view k) <| caps := t |> <| channels := c |> <| delayed := dm |>) sc H Hs).
Qed.

(** ** Budgets *)
Lemma sched_refines o k (HO : HashOrder) sc :
  (∀ d, o ≠ SchedOp.Tick d) → fresh_ids o (Kernel.scheduler k) →
  SchedOp.exec o (Kernel.scheduler k) = Return sc →
  refines quiet k (k <| Kernel.scheduler := sc |>).
Proof.
  intros Ho Hf He. apply (refines_one quiet (Act.Sched o)); [done|].
  exact (step_sched o (view k) sc HO Ho Hf He).
Qed.

Lemma cancel_identity_refines `{HashOrder} eid reason k :
  refines quiet k (Kernel.cancel_identity eid reason k).
Proof.
  unfold Kernel.cancel_identity.
  match goal with |- refines _ _ (Kernel.cancel_scheduled _ ?x) => set (k1 := x) end.
  transitivity k1.
  { apply (refines_one quiet (Act.Cancel eid reason)); [done|].
    exact (step_cancel eid reason (view k)). }
  unfold Kernel.cancel_scheduled.
  destruct (list_find _ _) as [[i [id e]]|]; [|done].
  destruct (Kernel.smp k1); [by apply refines_view|].
  by apply (sched_refines (SchedOp.Cancel id) k1 canonical_order).
Qed.

Section consume.
Context `{HashOrder} `{UuidFormat}.

Lemma exhaust_refines e eid reason k :
  refines quiet k (Kernel.cancel_identity eid reason (Kernel.record_resource e k)).
Proof. etransitivity; [|apply cancel_identity_refines]. by apply refines_view. Qed.

Lemma usage_refines eid u i b k :
  Kernel.identity_table k !! eid = Some i → IdentityMetadata.budget i = Some b →
  (ResourceSpec.within (IdentityMetadata.usage i) b → ResourceSpec.within u b) →
  refines quiet k (Kernel.set_usage eid u k).
Proof.
  intros Hi Hb Hw. apply (refines_one quiet (Act.Usage eid u)); [done|].
  exact (step_usage eid u i b (view k) Hi Hb Hw).
Qed.

Lemma cpu_refines eid amount k r k' :
  Kernel.try_consume_cpu_ticks eid amount k = Return (r, k') → refines quiet k k'.
Proof.
  unfold Kernel.try_consume_cpu_ticks.
  destruct (Kernel.is_identity_cancelled eid k); [by intros [= _ <-]|].
  destruct (Kernel.identity_table k !! eid) as [i|] eqn:Ei; [|by intros [= _ <-]].
  destruct (IdentityMetadata.budget i) as [b|] eqn:Eb; [|by intros [= _ <-]].
  assert (∀ e, (∀ l, ResourceBudget.cpu_ticks b = Some l →
      Quantity.val (ResourceUsage.cpu_ticks (IdentityMetadata.usage i)) + amount
        ≤ Quantity.val l) →
    refines quiet k (Kernel.record_resource e (Kernel.set_usage eid
      (ResourceUsage.consume_cpu_ticks (Quantity.new amount) (IdentityMetadata.usage i)) k)))
    as Hacc.
  { intros e Hl. etransitivity; [|by apply refines_view].
    eapply usage_refines; [done..|]. unfold ResourceSpec.within. simpl.
    intros (H1 & Hrest). split; [|done]. unfold ResourceSpec.fits in *.
    destruct (ResourceBudget.cpu_ticks b) as [l|]; [|done]. specialize (Hl l eq_refl).
    unfold Quantity.saturating_add, saturating_add. simpl. lia. }
  destruct (ResourceBudget.cpu_ticks b) as [l|] eqn:El.
  - intros (x & [-> _]%add_u64_Return & Hx)%bind_Return.
    destruct (N.ltb_spec (Quantity.val l)
      (Quantity.val (ResourceUsage.cpu_ticks (IdentityMetadata.usage i)) + amount)).
    + injection Hx as _ <-. apply exhaust_refines.
    + injection Hx as _ <-. apply Hacc. intros l' [= <-]. done.
  - intros [= _ <-]. apply Hacc. done.
Qed.

(** Adding one unit below the limit stays within the budget. *)
Definition adds_unit {r} (limit_of : ResourceBudget.t → option (Quantity.t r))
    (usage_of : ResourceUsage.t → Quantity.t r) (consume : ResourceUsage.t → ResourceUsage.t)
    : Prop :=
  ∀ u b, (∀ l, limit_of b = Some l → Quantity.val (usage_of u) < Quantity.val l) →
         ResourceSpec.within u b → ResourceSpec.within (consume u) b.

Ltac solve_adds_unit :=
  intros u b Hl; unfold ResourceSpec.within; simpl; intros Hw; split_and!; try apply Hw;
  unfold ResourceSpec.fits in *;
  match goal with |- match ?x with Some _ => _ | None => _ end =>
    destruct x as [l|]; [specialize (Hl l eq_refl)|done] end;
  unfold Quantity.saturating_add, saturating_add; simpl; lia.

Lemma adds_message : adds_unit ResourceBudget.message_count ResourceUsage.message_count
  ResourceUsage.consume_message.
Proof. solve_adds_unit. Qed.
Lemma adds_packet : adds_unit ResourceBudget.packet_count ResourceUsage.packet_count
  ResourceUsage.consume_packet.
Proof. solve_adds_unit. Qed.
Lemma adds_storage : adds_unit ResourceBudget.storage_ops ResourceUsage.storage_ops
  ResourceUsage.consume_storage_op.
Proof. solve_adds_unit. Qed.
Lemma adds_stage : adds_unit ResourceBudget.pipeline_stages ResourceUsage.pipeline_stages
  ResourceUsage.consume_pipeline_stage.
Proof. solve_adds_unit. Qed.

Lemma consume_unit_refines {r} resource operation limit_of usage_of consume event eid k x k' :
  adds_unit limit_of usage_of consume →
  @Kernel.consume_unit _ _ r resource operation limit_of usage_of consume event eid k
    = Return (x, k') → refines quiet k k'.
Proof.
  intros Hadd. unfold Kernel.consume_unit.
  destruct (Kernel.is_identity_cancelled eid k); [by intros [= _ <-]|].
  destruct (Kernel.identity_table k !! eid) as [i|] eqn:Ei; [|by intros [= _ <-]].
  destruct (IdentityMetadata.budget i) as [b|] eqn:Eb; [|by intros [= _ <-]].
  assert (∀ e, (∀ l, limit_of b = Some l →
      Quantity.val (usage_of (IdentityMetadata.usage i)) < Quantity.val l) →
    refines quiet k (Kernel.record_resource e
      (Kernel.set_usage eid (consume (IdentityMetadata.usage i)) k))) as Hacc.
  { intros e Hl. etransitivity; [|by apply refines_view]. eapply usage_refines; eauto. }
  destruct (limit_of b) as [l|] eqn:El.
  - destruct (N.leb_spec (Quantity.val l) (Quantity.val (usage_of (IdentityMetadata.usage i)))).
    + intros (a & _ & [= _ <-])%bind_Return. apply exhaust_refines.
    + intros [= _ <-]. apply Hacc. intros l' [= <-]. done.
  - intros [= _ <-]. apply Hacc. done.
Qed.

Lemma consume_message_refines id operation k x k' :
  Kernel.try_consume_message id operation k = Return (x, k') → refines quiet k k'.
Proof.
  unfold Kernel.try_consume_message. destruct (Kernel.task_to_identity k !! id);
    [|by intros [= _ <-]].
  apply consume_unit_refines, adds_message.
Qed.

(** ** Message passing *)
Lemma deliver_refines c m k x k' : Kernel.deliver c m k = Return (x, k') → refines quiet k k'.
Proof.
  unfold Kernel.deliver. destruct (Kernel.channels k !! c) as [ch|] eqn:Ech;
    [|by intros [= _ <-]].
  destruct (MessageQueue.push m (Channel.queue ch)) as [[[]|e] q] eqn:Ep; [|by intros [= _ <-]].
  intros (l & Hl & [= _ <-])%bind_Return.
  transitivity (k <| Kernel.channels ::= <[c := Channel.mk q]> |>).
  { apply (refines_one quiet (Act.Push c m)); [done|]. exact (step_push c m ch q (view k) Ech Ep). }
  assert (l ≡ₚ MessageQueue.messages q) as Hperm.
  { destruct (Kernel.fault_injector k) as [inj|]; [|by injection Hl as <-].
    revert Hl. apply (fold_outcome_ind (λ ms, ms ≡ₚ MessageQueue.messages q)); [done|].
    intros ms f ms' _ Hms ->%FaultSpec.reorder_one_Permutation. done. }
  apply (refines_one quiet (Act.Reorder c l)); [done|].
  match goal with |- astep _ (view ?a) (view ?b) =>
    assert (view b = (view a) <| channels ::= <[c := Channel.mk (q <| MessageQueue.messages := l |>)]> |>) as -> end.
  { exact (f_equal (λ x, (view k) <| channels := x |>) (eq_sym (insert_insert_eq
      (Kernel.channels k) c (Channel.mk (q <| MessageQueue.messages := l |>)) (Channel.mk q)))). }
  apply (step_reorder c l (Channel.mk q)); [|done]. apply lookup_insert_eq.
Qed.

Lemma inject_refines c m k x k' :
  Kernel.inject_send_faults c m k = Return (x, k') → refines quiet k k'.
Proof.
  unfold Kernel.inject_send_faults. destruct (Kernel.fault_injector k) as [inj|];
    [|by intros [= _ <-]].
  destruct (FaultInjector.should_crash_on_send inj); [by intros [= _ <-]|].
  destruct (FaultInjector.should_drop_message c m inj) as [dropped inj1].
  destruct dropped; [intros [= _ <-]; by apply refines_view|].
  destruct (FaultInjector.get_message_delay inj1) as [[delay|] inj2];
    [|intros [= _ <-]; by apply refines_view].
  intros (at_ & _ & [= _ <-])%bind_Return.
  apply (refines_one quiet (Act.Delayed (Kernel.delayed_messages k ++ [DelayedMessage.mk c m at_])));
    [done|]. exact (step_delayed _ (view k)).
Qed.

Lemma send_refines c m k x k' : Kernel.send_message c m k = Return (x, k') → refines quiet k k'.
Proof.
  unfold Kernel.send_message.
  destruct (Kernel.check_send_access c m k); [|by intros [= _ <-]].
  destruct (Kernel.check_schema m k); [|by intros [= _ <-]].
  assert (∀ y k1, Kernel.charge_source m k = Return (y, k1) → refines quiet k k1) as Hc.
  { intros y k1. unfold Kernel.charge_source. destruct (MessageEnvelope.source m);
      [apply consume_message_refines|by intros [= _ <-]]. }
  intros [(y & k1 & H1 & ([cut k2] & H2 & H3)%bind_Return)|(e & H1 & _)]%try_bind_Return;
    [|by eapply Hc].
  transitivity k1; [by eapply Hc|]. transitivity k2; [by eapply inject_refines|].
  destruct cut; [by injection H3 as _ <-|]. by eapply deliver_refines.
Qed.

Lemma take_refines c k x k' : Kernel.take_message c k = Return (x, k') → refines quiet k k'.
Proof.
  unfold Kernel.take_message. destruct (Kernel.channels k !! c) as [ch|] eqn:Ech;
    [|by intros [= _ <-]].
  destruct (MessageQueue.pop (Channel.queue ch)) as [[m|] q] eqn:Ep; [|by intros [= _ <-]].
  assert (refines quiet k (k <| Kernel.channels ::= <[c := ch <| Channel.queue := q |>]> |>)) as Ht.
  { apply (refines_one quiet (Act.Take c m)); [done|]. exact (step_take c m ch q (view k) Ech Ep). }
  simpl. destruct (Kernel.fault_injector k).
  - intros (inj & _ & [= _ <-])%bind_Return. etransitivity; [exact Ht|]. by apply refines_view.
  - by intros [= _ <-].
Qed.

Lemma receive_refines c timeout k x k' :
  Kernel.receive_message c timeout k = Return (x, k') → refines quiet k k'.
Proof.
  unfold Kernel.receive_message. destruct (Kernel.check_receive_access c k); [|by intros [= _ <-]].
  assert (∀ y k1, Kernel.charge_receiver k = Return (y, k1) → refines quiet k k1) as Hc.
  { intros y k1. unfold Kernel.charge_receiver. destruct (Kernel.current_receive_task k);
      [apply consume_message_refines|by intros [= _ <-]]. }
  intros [(y & k1 & H1 & H2)|(e & H1 & _)]%try_bind_Return; [|by eapply Hc].
  transitivity k1; [by eapply Hc|]. destruct (Kernel.fault_injector k1) as [inj|].
  - destruct (FaultInjector.should_crash_on_recv inj); [by injection H2 as _ <-|].
    by eapply take_refines.
  - by eapply take_refines.
Qed.
End consume.

(** ** Capabilities *)
Lemma validate_ok c id k :
  Kernel.validate_capability c id k = Ok tt ↔
  ∃ m, Kernel.capability_table k !! c = Some m ∧ live_entry (Kernel.now_nanos k) m ∧
       is_Some (Kernel.tasks k !! id) ∧ CapabilityMetadata.owner m = id.
Proof.
  unfold Kernel.validate_capability, live_entry.
  destruct (Kernel.capability_table k !! c) as [m|]; [|naive_solver].
  set (lease := CapabilityMetadata.lease_expires_at_nanos m).
  assert ((match lease with Some e => e <=? Kernel.now_nanos k | None => false end) = false ↔
    match lease with Some t => Kernel.now_nanos k < t | None => True end) as Hl.
  { destruct lease; [|done]. rewrite N.leb_gt. done. }
  destruct (match lease with Some e => e <=? Kernel.now_nanos k | None => false end).
  { split; [done|]. intros (m' & [= <-] & (_ & _ & Hx) & _). by apply Hl in Hx. }
  destruct (CapabilityMetadata.revoked m) eqn:Er.
  { split; [done|]. intros (m' & [= <-] & (_ & Hr & _) & _). congruence. }
  case_bool_decide as Hs.
  { split; [by case_bool_decide|]. by intros (m' & [= <-] & (Hv & _) & _). }
  destruct (bool_decide (is_Some (Kernel.tasks k !! CapabilityMetadata.owner m))) eqn:Ht; simpl.
  - apply bool_decide_eq_true in Ht. case_bool_decide as Ho.
    + split; [done|]. by intros (m' & [= <-] & _ & _ & ?).
    + subst id. split; [|done]. intros _. exists m.
      split_and!; [done|done|done|by apply Hl|done|done].
  - apply bool_decide_eq_false in Ht. split; [done|].
    intros (m' & [= <-] & _ & ? & <-). done.
Qed.

Lemma checked_cap_ok verb c id k u :
  Kernel.checked_cap verb c id k = Ok u → Kernel.validate_capability c id k = Ok tt.
Proof.
  unfold Kernel.checked_cap. destruct (Kernel.validate_capability c id k) as [[]|]; [done|].
  intros [=].
Qed.

Lemma grant_refines task cap lease k P :
  is_Some (Kernel.tasks k !! task) → (∀ m, P (Act.Grant cap m)) →
  refines P k (Kernel.record_capability_grant cap task "Generic" None lease k).
Proof.
  intros Ht HP. eapply refines_one; [apply HP|].
  exact (step_grant cap (CapabilityMetadata.mk cap task "Generic" CapabilityStatus.Valid None
           false lease) (view k) eq_refl Ht).
Qed.

Lemma revoke_refines c owner reason k : refines quiet k (Kernel.revoke_capability c owner reason k).2.
Proof.
  unfold Kernel.revoke_capability. destruct (Kernel.checked_cap _ c owner k); [|done].
  destruct (Kernel.capability_table k !! c) as [m|] eqn:Em; [|done]. simpl.
  apply (refines_one quiet (Act.Invalidate c true)); [done|].
  exact (step_invalidate c true m (view k) Em).
Qed.

Lemma drop_refines c owner k : refines quiet k (Kernel.drop_capability c owner k).2.
Proof.
  unfold Kernel.drop_capability. destruct (Kernel.checked_cap _ c owner k); [|done].
  destruct (Kernel.capability_table k !! c) as [m|] eqn:Em; [|done]. simpl.
  apply (refines_one quiet (Act.Invalidate c false)); [done|].
  exact (step_invalidate c false m (view k) Em).
Qed.

Lemma evaluate_policy_view e ctx k : view (Kernel.evaluate_policy e ctx k).2 = view k.
Proof. unfold Kernel.evaluate_policy. by destruct (Kernel.policy_engine k). Qed.

Lemma transfer_refines c from to_ k k0 :
  view k = view k0 → Kernel.validate_capability c from k0 = Ok tt →
  is_Some (Kernel.tasks k0 !! to_) → refines quiet k (Kernel.transfer_capability c from to_ k).2.
Proof.
  intros Ev (m & Em & Hlive & _)%validate_ok Hto. unfold Kernel.transfer_capability.
  assert (Kernel.capability_table k = Kernel.capability_table k0) as Ec by exact (f_equal caps Ev).
  assert (Kernel.tasks k = Kernel.tasks k0) as Et by exact (f_equal tasks Ev).
  assert (Kernel.now_nanos k = Kernel.now_nanos k0) as En by exact (f_equal time Ev).
  rewrite Ec, Em. simpl. apply (refines_one quiet (Act.Transfer c to_)); [done|].
  rewrite <- Ec in Em. rewrite <- En in Hlive. rewrite <- Et in Hto.
  exact (step_transfer c m to_ (view k) Em Hlive Hto).
Qed.

Lemma delegate_refines c from to_ k : refines quiet k (Kernel.delegate_capability c from to_ k).2.
Proof.
  unfold Kernel.delegate_capability.
  destruct (Kernel.checked_cap _ c from k) as [u|] eqn:Ec; [|done].
  apply checked_cap_ok in Ec.
  destruct (bool_decide (is_Some (Kernel.tasks k !! to_))) eqn:Et; simpl; [|done].
  apply bool_decide_eq_true in Et.
  destruct (Kernel.identity_pair from to_ k) as [[ia ib]|];
    [|by apply (transfer_refines c from to_ k k)].
  pose proof (evaluate_policy_view PolicyEvent.OnCapabilityDelegate
    (PolicyContext.for_capability_delegation ia ib c) k) as Hv.
  destruct (Kernel.evaluate_policy _ _ k) as [dec k1]. simpl in Hv.
  destruct dec; simpl; [|by apply refines_view..].
  transitivity k1; [by apply refines_view|].
  destruct (negb _); [|by apply (transfer_refines c from to_ k1 k)].
  match goal with |- refines _ _ (Kernel.transfer_capability _ _ _ ?x).2 =>
    transitivity x; [by apply refines_view|by apply (transfer_refines c from to_ x k)] end.
Qed.

(** ** Tasks *)
Lemma invalidate_fold_lookup id l k c :
  Kernel.capability_table (foldl (Kernel.invalidate_one id) k l) !! c =
  if decide (c ∈ l)
  then (λ m, m <| CapabilityMetadata.status := CapabilityStatus.Invalid |>)
         <$> Kernel.capability_table k !! c
  else Kernel.capability_table k !! c.
Proof.
  revert k. induction l as [|x l IH]; intros k; simpl; [done|]. rewrite IH.
  assert (Kernel.capability_table (Kernel.invalidate_one id k x) !! c =
    if decide (c = x)
    then (λ m, m <| CapabilityMetadata.status := CapabilityStatus.Invalid |>)
           <$> Kernel.capability_table k !! c
    else Kernel.capability_table k !! c) as ->.
  { unfold Kernel.invalidate_one. destruct (Kernel.capability_table k !! x) as [m|] eqn:Em; simpl.
    - destruct (decide (c = x)) as [->|Hne]; [by rewrite lookup_insert_eq, Em|].
      by rewrite lookup_insert_ne.
    - destruct (decide (c = x)) as [->|Hne]; [by rewrite Em|done]. }
  destruct (decide (c = x)) as [->|Hne].
  - rewrite (decide_True _ _ (list_elem_of_here x l)).
    destruct (decide (x ∈ l)); [|done]. by destruct (Kernel.capability_table k !! x).
  - destruct (decide (c ∈ l)); [by rewrite decide_True by (by right)|].
    rewrite decide_False; [done|]. by intros [?|?]%elem_of_cons.
Qed.

Lemma invalidate_table `{HashOrder} id k :
  Kernel.capability_table (Kernel.invalidate_task_capabilities id k) =
  retire_entry id <$> Kernel.capability_table k.
Proof.
  apply map_eq. intros c. unfold Kernel.invalidate_task_capabilities.
  rewrite invalidate_fold_lookup, lookup_fmap.
  match goal with |- (if decide (c ∈ ?l) then _ else _) = _ =>
    assert (c ∈ l ↔ ∃ m, Kernel.capability_table k !! c = Some m ∧ CapabilityMetadata.owner m = id)
      as Hl end.
  { rewrite list_elem_of_fmap. split.
    - intros ([c' m] & -> & [Ho Hm%elem_of_hm_iter]%list_elem_of_filter). eauto.
    - intros (m & Hm & Ho). exists (c, m). by rewrite list_elem_of_filter, elem_of_hm_iter. }
  unfold retire_entry. case_decide as Hd.
  - apply Hl in Hd as (m & -> & Ho). simpl. by rewrite bool_decide_true.
  - destruct (Kernel.capability_table k !! c) as [m|]; [|done]. simpl.
    rewrite bool_decide_false; [done|]. intros Ho. apply Hd, Hl. eauto.
Qed.

Lemma invalidate_frame `{HashOrder} id k :
  ∃ t lg, Kernel.invalidate_task_capabilities id k = with_caps k t lg.
Proof. apply foldl_caps_frame. intros. apply invalidate_one_frame. Qed.

Lemma memory_refines o k a (DH : DefaultHasher) :
  AsmOp.exec o (Kernel.address_space_manager k) = Return a →
  refines quiet k (k <| Kernel.address_space_manager := a |>).
Proof.
  intros He. apply (refines_one quiet (Act.Memory o)); [done|]. exact (step_memory o a (view k) DH He).
Qed.

(** Retiring a task: the part of [terminate_task_with_reason] before the scheduler. *)
Lemma retire_refines `{HashOrder} drawn id reason k :
  let k1 := (Kernel.retire_identity drawn id reason k) <| Kernel.tasks ::= delete id |> in
  refines quiet k (Kernel.invalidate_task_capabilities id k1).
Proof.
  intros k1. set (k2 := Kernel.invalidate_task_capabilities id k1).
  assert (∃ a, refines quiet k (k <| Kernel.address_space_manager := a |>) ∧
    view k2 = (view k) <| asm := a |> <| t2i ::= delete id |> <| tasks ::= delete id |>
                <| caps ::= fmap (retire_entry id) |>) as (a & Ha & Hv).
  { pose proof (invalidate_table id k1) as Ht. fold k2 in Ht.
    destruct (invalidate_frame id k1) as (t & lg & E). fold k2 in E. rewrite E in Ht. simpl in Ht.
    subst t. unfold k1, Kernel.retire_identity in E.
    destruct (Kernel.task_to_identity k !! id) as [eid|] eqn:Eid.
    - exists (AddressSpaceManager.destroy_address_space drawn eid (Kernel.now_nanos k)
        (Kernel.address_space_manager k)).2. split.
      + by apply (memory_refines (AsmOp.Destroy drawn eid (Kernel.now_nanos k)) k _ sample_hasher).
      + rewrite E. reflexivity.
    - exists (Kernel.address_space_manager k). split; [by apply refines_view|].
      rewrite E. set (F := λ x, (view k) <| t2i := x |> <| tasks ::= delete id |>
        <| caps ::= fmap (retire_entry id) |>).
      change (F (Kernel.task_to_identity k) = F (delete id (Kernel.task_to_identity k))).
      by rewrite (delete_id _ _ Eid). }
  etransitivity; [exact Ha|]. apply (refines_one quiet (Act.Retire id)); [done|].
  rewrite Hv. exact (step_retire id ((view k) <| asm := a |>)).
Qed.

Lemma terminate_refines `{HashOrder} drawn id reason k :
  refines quiet k (Kernel.terminate_task_with_reason drawn id reason k).
Proof.
  unfold Kernel.terminate_task_with_reason.
  etransitivity; [apply (retire_refines drawn id reason k)|].
  match goal with |- refines _ _ (match Kernel.smp ?x with _ => _ end) => set (k2 := x) end.
  destruct (Kernel.smp k2); [by apply refines_view|].
  by apply (sched_refines (SchedOp.Exit id) k2 canonical_order).
Qed.

(** Identifiers drawn for a new task are unused. *)
Definition fresh_task (d : Drawn.t) (k : Kernel.t) : Prop :=
  Kernel.tasks k !! Drawn.task d = None ∧
  Scheduler.tasks (Kernel.scheduler k) !! Drawn.task d = None.

Lemma install_refines `{DefaultHasher} d desc meta k k' :
  fresh_task d k → IdentityMetadata.budget meta = None →
  Kernel.install_task (Drawn.task d) (Drawn.space d) desc meta k = Return k' → refines quiet k k'.
Proof.
  intros [Ht Hs] Hb. unfold Kernel.install_task.
  match goal with |- context [Kernel.smp ?x] => set (k1 := x) end.
  assert (refines quiet k k1) as H1.
  { apply (refines_one quiet (Act.Spawn (Drawn.task d)
      (TaskInfo.mk desc (IdentityMetadata.execution_id meta)) meta)); [done|].
    exact (step_spawn _ _ meta (view k) Ht Hb). }
  intros (k2 & H2 & ([cap a] & H3 & [= <-])%bind_Return)%bind_Return.
  etransitivity; [exact H1|]. transitivity k2.
  - destruct (Kernel.smp k1).
    + apply bind_Return in H2 as (sc & _ & [= <-]). by apply refines_view.
    + injection H2 as <-. by apply (sched_refines (SchedOp.Enqueue (Drawn.task d)) k1 canonical_order).
  - apply (memory_refines (AsmOp.Create (Drawn.space d) (IdentityMetadata.execution_id meta)
      (Kernel.now_nanos k2)) k2 a H). simpl. by rewrite H3.
Qed.

Lemma spawn_refines `{DefaultHasher} d desc k x k' :
  fresh_task d k → Kernel.spawn_task d desc k = Return (x, k') → refines quiet k k'.
Proof.
  intros Hf. unfold Kernel.spawn_task. intros (k1 & H1 & [= _ <-])%bind_Return.
  by eapply install_refines in H1.
Qed.

Lemma spawn_policy_view creator meta k : view (Kernel.check_spawn_policy creator meta k).2 = view k.
Proof.
  unfold Kernel.check_spawn_policy. destruct creator as [c|]; [|done].
  destruct (Kernel.identity_table k !! c) as [ci|]; [|done].
  pose proof (evaluate_policy_view PolicyEvent.OnSpawn (PolicyContext.for_spawn ci meta) k) as Hv.
  destruct (Kernel.evaluate_policy _ _ k) as [dec k1]. simpl in Hv. by destruct dec.
Qed.

Lemma spawn_identity_refines `{DefaultHasher} d desc kind domain parent creator k x k' :
  fresh_task d k →
  Kernel.spawn_task_with_identity d desc kind domain parent creator k = Return (x, k') →
  refines quiet k k'.
Proof.
  intros Hf. unfold Kernel.spawn_task_with_identity.
  destruct (negb _); [by intros [= _ <-]|].
  match goal with |- context [Kernel.check_spawn_policy creator ?m k] => set (meta := m) end.
  assert (IdentityMetadata.budget meta = None) as Hb.
  { unfold meta. by destruct parent, creator. }
  pose proof (spawn_policy_view creator meta k) as Hv.
  destruct (Kernel.check_spawn_policy creator meta k) as [[u|e] k1]; simpl in Hv.
  - intros (k2 & H2 & [= _ <-])%bind_Return. transitivity k1; [by apply refines_view|].
    eapply (install_refines d) in H2; [done| |done].
    destruct Hf as [F1 F2]. split.
    + by rewrite (f_equal tasks Hv : Kernel.tasks k1 = Kernel.tasks k).
    + by rewrite (f_equal sched Hv : Kernel.scheduler k1 = Kernel.scheduler k).
  - intros [= _ <-]. by apply refines_view.
Qed.

(** ** Scheduling loops *)
(** What the loops need of a relation between states to lie in it: the interface
    between the loops and the elementary operations they repeat. *)
Class Steady `{HashOrder} `{UuidFormat} (R : relation Kernel.t) : Prop := {
  steady_preorder :: PreOrder R;
  steady_time d k k' : Kernel.advance_time d k = Return k' → R k k';
  steady_cpu eid n k r k' : Kernel.try_consume_cpu_ticks eid n k = Return (r, k') → R k k';
  steady_sched o k (HO : HashOrder) sc :
    (∀ d, o ≠ SchedOp.Tick d) → fresh_ids o (Kernel.scheduler k) →
    SchedOp.exec o (Kernel.scheduler k) = Return sc → R k (k <| Kernel.scheduler := sc |>);
  steady_smp k rt : R k (k <| Kernel.smp := rt |>)
}.

Section loops.
Context `{HashOrder} `{UuidFormat} (R : relation Kernel.t) `{!Steady R}.

Lemma tick_once_steady k n k' : Kernel.tick_once k = Return (n, k') → R k k'.
Proof.
  unfold Kernel.tick_once. intros (k1 & H1 & (m & _ & [= _ <-])%bind_Return)%bind_Return.
  by eapply steady_time.
Qed.

Lemma charge_ticks_steady id n k b k' :
  Kernel.charge_ticks id n k = Return (b, k') → R k k'.
Proof.
  unfold Kernel.charge_ticks. destruct (Kernel.get_task_identity id k); [|by intros [= _ <-]].
  intros ([r k1] & H1 & [= _ <-])%bind_Return. by eapply steady_cpu.
Qed.

Lemma dequeue_steady k id sc :
  Scheduler.dequeue_next (Kernel.scheduler k) = (id, sc) →
  R k (k <| Kernel.scheduler := sc |>).
Proof.
  intros E. apply (steady_sched SchedOp.Dequeue k canonical_order); [done|done|].
  simpl. by rewrite E.
Qed.

Lemma preempt_steady k :
  R k (k <| Kernel.scheduler ::= λ sc, (Scheduler.preempt_current sc).2 |>).
Proof. by apply (steady_sched SchedOp.Preempt k canonical_order). Qed.

Lemma run_slice_steady fuel id quantum ticks tt tc k tt' tc' k' :
  Kernel.run_slice fuel id quantum ticks tt tc k = Return (tt', tc', k') → R k k'.
Proof.
  revert tt tc k. induction fuel as [|fuel IH]; intros tt tc k; simpl; [done|].
  destruct (_ && _); [|by intros [= _ _ <-]].
  destruct (negb _); [by intros [= _ _ <-]|].
  intros ([n k1] & H1 & (tc1 & _ & (tt1 & _ & ([b k2] & H2 & H3)%bind_Return)%bind_Return)%bind_Return)%bind_Return.
  etransitivity; [by eapply tick_once_steady|]. etransitivity; [by eapply charge_ticks_steady|].
  destruct b; [by eapply IH|]. by injection H3 as _ _ <-.
Qed.

Lemma run_loop_steady fuel ticks tc rounds k n k' :
  Kernel.run_loop fuel ticks tc rounds k = Return (n, k') → R k k'.
Proof.
  revert tc rounds k. induction fuel as [|fuel IH]; intros tc rounds k; [done|].
  cbn [Kernel.run_loop].
  destruct ((tc <? ticks) && Scheduler.has_runnable_tasks (Kernel.scheduler k));
    [|by intros [= _ <-]].
  destruct (Scheduler.dequeue_next (Kernel.scheduler k)) as [[id|] sc] eqn:Ed;
    apply dequeue_steady in Ed; [|by intros [= _ <-]].
  intros (r1 & _ & ([[tt tc1] k1] & H1 & H2)%bind_Return)%bind_Return.
  etransitivity; [exact Ed|]. etransitivity; [by eapply run_slice_steady|].
  apply IH in H2. etransitivity; [|exact H2].
  destruct (Kernel.is_runnable id k1 && _); [apply preempt_steady|done].
Qed.

Lemma run_quantum_steady n id k k' :
  Kernel.run_quantum n id k = Return k' → R k k'.
Proof.
  revert k. induction n as [|n IH]; intros k; simpl; [by intros [= <-]|].
  destruct (negb _); [by intros [= <-]|].
  intros ([m k1] & H1 & ([b k2] & H2 & H3)%bind_Return)%bind_Return.
  etransitivity; [by eapply tick_once_steady|]. etransitivity; [by eapply charge_ticks_steady|].
  destruct (negb b); [by injection H3 as <-|].
  destruct (Scheduler.should_preempt id (Kernel.scheduler k2)); [by injection H3 as <-|by apply IH].
Qed.

Lemma steps_loop_steady n count k m k' :
  Kernel.steps_loop n count k = Return (m, k') → R k k'.
Proof.
  revert count k. induction n as [|n IH]; intros count k; simpl; [by intros [= _ <-]|].
  destruct (negb _); [by intros [= _ <-]|].
  destruct (Scheduler.dequeue_next (Kernel.scheduler k)) as [[id|] sc] eqn:Ed;
    apply dequeue_steady in Ed.
  - intros (c1 & _ & (k1 & H1 & H2)%bind_Return)%bind_Return.
    etransitivity; [exact Ed|]. etransitivity; [by eapply run_quantum_steady|].
    etransitivity; [|by eapply IH]. destruct (Kernel.is_runnable id k1); [apply preempt_steady|done].
  - intros H1. etransitivity; [exact Ed|]. by eapply IH.
Qed.

Lemma settle_steady k e k' : Kernel.settle_core k e = Return k' → R k k'.
Proof.
  unfold Kernel.settle_core. destruct e as [[[c id] ts] preempt].
  intros ([b k1] & H1 & H2)%bind_Return. transitivity k1.
  - destruct (Kernel.get_task_identity id k); [|by injection H1 as _ <-].
    apply bind_Return in H1 as ([r k2] & H3 & H4).
    etransitivity; [by eapply steady_cpu|]. destruct (is_err r); [|by injection H4 as _ <-].
    apply bind_Return in H4 as (rt & _ & [= _ <-]). apply steady_smp.
  - destruct (_ && _); [|by injection H2 as <-].
    apply bind_Return in H2 as (rt & _ & (sc & _ & [= <-])%bind_Return). apply steady_smp.
Qed.

Lemma smp_round_steady n r k m k' :
  Kernel.smp_round n r k = Return (m, k') → R k k'.
Proof.
  unfold Kernel.smp_round.
  intros (rt & _ & ([r1 rt1] & _ & (k1 & H1 & (rt2 & _ & ([l rt3] & _ & (k2 & H2 & [= _ <-])%bind_Return)%bind_Return)%bind_Return)%bind_Return)%bind_Return)%bind_Return.
  transitivity (k <| Kernel.smp := Some rt1 |>); [apply steady_smp|].
  transitivity k1; [by eapply steady_time|].
  transitivity (k1 <| Kernel.smp := Some rt3 |>); [apply steady_smp|].
  revert H2. apply (fold_outcome_ind (R (k1 <| Kernel.smp := Some rt3 |>))); [done|].
  intros k3 e k4 _ Hk3 ?%settle_steady. by transitivity k3.
Qed.

Lemma smp_loop_steady fuel n ticks tc r k m k' :
  Kernel.smp_loop fuel n ticks tc r k = Return (m, k') → R k k'.
Proof.
  revert tc r k. induction fuel as [|fuel IH]; intros tc r k; simpl; [done|].
  destruct (_ <? _); [|by intros [= _ <-]].
  destruct (negb _); [by intros [= _ <-]|].
  intros ([r1 k1] & H1 & H2)%bind_Return.
  etransitivity; [by eapply smp_round_steady|by eapply IH].
Qed.

Lemma run_for_ticks_smp_steady ticks k m k' :
  Kernel.run_for_ticks_smp ticks k = Return (m, k') → R k k'.
Proof.
  unfold Kernel.run_for_ticks_smp. destruct (Kernel.smp k); [apply smp_loop_steady|].
  by intros [= _ <-].
Qed.

Lemma smp_steps_steady n c k m k' :
  Kernel.smp_steps n c k = Return (m, k') → R k k'.
Proof.
  revert c k. induction n as [|n IH]; intros c k; simpl; [by intros [= _ <-]|].
  destruct (negb _); [by intros [= _ <-]|].
  intros ([r1 k1] & H1 & (c1 & _ & H2)%bind_Return)%bind_Return.
  etransitivity; [by eapply run_for_ticks_smp_steady|by eapply IH].
Qed.

Lemma run_for_ticks_steady ticks k m k' :
  Kernel.run_for_ticks ticks k = Return (m, k') → R k k'.
Proof.
  unfold Kernel.run_for_ticks. destruct (Kernel.smp k);
    [apply run_for_ticks_smp_steady|apply run_loop_steady].
Qed.

Lemma run_for_steps_steady n k m k' :
  Kernel.run_for_steps n k = Return (m, k') → R k k'.
Proof.
  unfold Kernel.run_for_steps, Kernel.run_for_steps_smp.
  destruct (Kernel.smp k); [apply smp_steps_steady|apply steps_loop_steady].
Qed.

Lemma run_until_idle_steady k k' : Kernel.run_until_idle k = Return k' → R k k'.
Proof.
  unfold Kernel.run_until_idle. intros (d & _ & Hl)%bind_Return. revert Hl.
  generalize 1000%nat as n. intros n. revert k. induction n as [|n IH]; intros k; simpl;
    [by intros [= <-]|].
  destruct (Kernel.is_idle k); [by intros [= <-]|].
  intros (k1 & H1 & H2)%bind_Return. etransitivity; [by eapply steady_time|by apply IH].
Qed.

Lemma sleep_steady d k x k' : Kernel.sleep d k = Return (x, k') → R k k'.
Proof.
  unfold Kernel.sleep. simpl.
  intros (n & _ & (w & _ & (k1 & H1 & [= _ <-])%bind_Return)%bind_Return)%bind_Return.
  etransitivity; [|by eapply steady_time].
  assert (R k (k <| Kernel.timer := Kernel.timer k |>)) as Hk by apply steady_smp.
  destruct (Scheduler.current_task (Kernel.scheduler k)) as [id|]; [|exact Hk].
  etransitivity; [exact Hk|].
  by apply (steady_sched (SchedOp.Block id w) (k <| Kernel.timer := Kernel.timer k |>)
    canonical_order).
Qed.
End loops.

#[export] Instance quiet_steady `{HashOrder} `{UuidFormat} : Steady (refines quiet).
Proof.
  split; [apply _|apply advance_time_refines|apply cpu_refines|apply sched_refines|].
  intros k rt. by apply refines_view.
Qed.

(** ** Memory *)
Section memory.
Context `{DefaultHasher}.

Lemma create_space_refines sid eid k x k' :
  Kernel.create_address_space sid eid k = Return (x, k') → refines quiet k k'.
Proof.
  unfold Kernel.create_address_space. intros ([cap a] & H1 & [= _ <-])%bind_Return.
  apply (memory_refines (AsmOp.Create sid eid (Kernel.now_nanos k)) k a H). simpl. by rewrite H1.
Qed.

Lemma allocate_in_space_refines cap r eid k x k' :
  Kernel.allocate_in_space cap r eid k = Return (x, k') → refines quiet k k'.
Proof.
  unfold Kernel.allocate_in_space. intros ([y a] & H1 & [= _ <-])%bind_Return.
  apply (memory_refines (AsmOp.Allocate cap r eid (Kernel.now_nanos k)) k a H). simpl.
  by rewrite H1.
Qed.

Lemma memory_limit_Some eid k i l :
  Kernel.memory_limit eid k = Some (i, l) →
  ∃ b, Kernel.identity_table k !! eid = Some i ∧ IdentityMetadata.budget i = Some b ∧
       ResourceBudget.memory_units b = Some l.
Proof.
  unfold Kernel.memory_limit.
  intros (i0 & Hi & (b & Hb & (l0 & Hl & [= -> ->])%bind_Some)%bind_Some)%bind_Some. eauto.
Qed.

Lemma within_memory u b l n :
  ResourceBudget.memory_units b = Some l →
  (Quantity.val (ResourceUsage.memory_units u) ≤ Quantity.val l →
   Quantity.val (ResourceUsage.memory_units u) + n ≤ Quantity.val l) →
  ResourceSpec.within u b →
  ResourceSpec.within (ResourceUsage.consume_memory_units (Quantity.new n) u) b.
Proof.
  unfold ResourceSpec.within. simpl. intros El Hn (H1 & H2 & Hrest). split; [done|].
  split; [|done]. rewrite El in *. simpl in *.
  unfold Quantity.saturating_add, saturating_add. simpl. lia.
Qed.

Lemma charge_memory_refines size eid k : refines quiet k (Kernel.charge_memory size eid k).2.
Proof.
  unfold Kernel.charge_memory. destruct (Kernel.memory_limit eid k) as [[i l]|] eqn:E; [|done].
  apply memory_limit_Some in E as (b & Hi & Hb & Hl).
  set (units := div_ceil size 4096).
  destruct (Quantity.leb (Quantity.new units) (Quantity.saturating_sub l
    (ResourceUsage.memory_units (IdentityMetadata.usage i)))) eqn:Ele; simpl; [|done].
  apply (usage_refines eid (ResourceUsage.consume_memory_units (Quantity.new units)
    (IdentityMetadata.usage i)) i b); [done..|].
  apply (within_memory _ _ l); [done|]. unfold Quantity.leb in Ele. apply N.leb_le in Ele.
  unfold Quantity.saturating_sub, saturating_sub in Ele. simpl in Ele. lia.
Qed.

Lemma allocate_refines rid cap size perms backing eid k x k' :
  Kernel.allocate_region rid cap size perms backing eid k = Return (x, k') → refines quiet k k'.
Proof.
  unfold Kernel.allocate_region. destruct (size =? 0); [by intros [= _ <-]|].
  pose proof (charge_memory_refines size eid k) as Hc.
  destruct (Kernel.charge_memory size eid k) as [[u|e] k1]; simpl in Hc.
  - intros ?%allocate_in_space_refines. by transitivity k1.
  - by intros [= _ <-].
Qed.

Lemma charge_memory_op_refines size eid k x k' :
  Kernel.charge_memory_op size eid k = Return (x, k') → refines quiet k k'.
Proof.
  unfold Kernel.charge_memory_op. destruct (Kernel.memory_limit eid k) as [[i l]|] eqn:E;
    [|by intros [= _ <-]].
  apply memory_limit_Some in E as (b & Hi & Hb & Hl).
  intros (n & [-> _]%add_u64_Return & Hn)%bind_Return.
  destruct (N.ltb_spec (Quantity.val l) (Quantity.val (ResourceUsage.memory_units
    (IdentityMetadata.usage i)) + div_ceil size 4096)).
  - injection Hn as _ <-. by apply refines_view.
  - injection Hn as _ <-. eapply usage_refines; [done..|]. by apply (within_memory _ _ l).
Qed.

Lemma allocate_op_refines rid cap size perms backing eid k x k' :
  Kernel.allocate_region_op rid cap size perms backing eid k = Return (x, k') → refines quiet k k'.
Proof.
  unfold Kernel.allocate_region_op.
  intros [(u & k1 & H1 & H2)|(e & H1 & _)]%try_bind_Return.
  - etransitivity; [by eapply charge_memory_op_refines|by eapply allocate_in_space_refines].
  - by eapply charge_memory_op_refines.
Qed.

Lemma access_refines cap a eid k : refines quiet k (Kernel.access_region cap a eid k).2.
Proof.
  unfold Kernel.access_region.
  destruct (AddressSpaceManager.access_region _ _ _ _ _) as [r m] eqn:E. simpl.
  apply (memory_refines (AsmOp.Access cap a eid (Kernel.now_nanos k)) k m H). simpl. by rewrite E.
Qed.

Lemma activate_refines d eid k : refines quiet k (Kernel.activate_address_space d eid k).2.
Proof.
  unfold Kernel.activate_address_space.
  destruct (AddressSpaceManager.activate_space _ _ _ _) as [r m] eqn:E. simpl.
  apply (memory_refines (AsmOp.Activate d eid (Kernel.now_nanos k)) k m H). simpl. by rewrite E.
Qed.
End memory.

(** ** The operations of the kernel *)
Module KOp.
Inductive t :=
| CreateChannel (d : Drawn.t)
| Send (c : ChannelId.t) (m : MessageEnvelope.t)
| Recv (c : ChannelId.t) (timeout : option Duration.t)
| AdvanceTime (d : Duration.t)
| Sleep (d : Duration.t)
| Yield
| RunForTicks (n : N)
| RunForSteps (n : N)
| RunUntilIdle
| Grant (task : TaskId.t) (cap : N)
| GrantLease (task : TaskId.t) (cap : N) (lease : Duration.t)
| Revoke (cap : N) (owner : TaskId.t) (reason : string)
| Drop (cap : N) (owner : TaskId.t)
| Delegate (cap : N) (from_task to_task : TaskId.t)
| Spawn (d : Drawn.t) (desc : TaskDescriptor.t)
| SpawnWithIdentity (d : Drawn.t) (desc : TaskDescriptor.t) (kind : IdentityKind.t)
    (domain : TrustDomain.t) (parent creator : option ExecutionId.t)
| Terminate (drawn : AddressSpaceId.t) (id : TaskId.t) (reason : ExitReason.t)
| CreateIdentity (meta : IdentityMetadata.t)
| ConsumeCpu (e : ExecutionId.t) (amount : N)
| ConsumeStage (e : ExecutionId.t) (stage : string)
| ConsumePacket (e : ExecutionId.t) (o : PacketOperation.t)
| ConsumeStorage (e : ExecutionId.t) (o : StorageOperation.t)
| RegisterService (s : ServiceId.t) (c : ChannelId.t)
| RegisterWithSchema (s : ServiceId.t) (c : ChannelId.t) (p : VersionPolicy.t)
| SetSchemaPolicy (s : ServiceId.t) (p : VersionPolicy.t)
| GrantAccess (c : ChannelId.t) (id : TaskId.t) (mode : ChannelAccessMode.t)
| RevokeAccess (c : ChannelId.t) (id : TaskId.t)
| SetReceiveContext (id : TaskId.t)
| ClearReceiveContext
| CreateSpace (sid : AddressSpaceId.t) (e : ExecutionId.t)
| Allocate (rid : MemoryRegionId.t) (cap : AddressSpaceCap.t) (size : N) (p : MemoryPerms.t)
    (b : MemoryBacking.t) (e : ExecutionId.t)
| AllocateOp (rid : MemoryRegionId.t) (cap : AddressSpaceCap.t) (size : N) (p : MemoryPerms.t)
    (b : MemoryBacking.t) (e : ExecutionId.t)
| Access (cap : MemoryRegionCap.t) (a : MemoryAccessType.t) (e : ExecutionId.t)
| Activate (drawn : AddressSpaceId.t) (e : ExecutionId.t)
| EnableSmp (cores : N)
| ClearExitNotifications.

(** The state after an operation, whether it succeeded or returned an error. *)
Definition exec `{HashOrder} `{UuidFormat} `{DefaultHasher} (o : t) (k : Kernel.t)
    : outcome Kernel.t :=
  let after {A} (m : outcome (A * Kernel.t)) : outcome Kernel.t := r ← m; Return r.2 in
  match o with
  | CreateChannel d => Return (Kernel.create_channel (Drawn.channel d) k).2
  | Send c m => after (Kernel.send_message c m k)
  | Recv c timeout => after (Kernel.receive_message c timeout k)
  | AdvanceTime d => Kernel.advance_time d k
  | Sleep d => after (Kernel.sleep d k)
  | Yield => Return (Kernel.yield_now k).2
  | RunForTicks n => after (Kernel.run_for_ticks n k)
  | RunForSteps n => after (Kernel.run_for_steps n k)
  | RunUntilIdle => Kernel.run_until_idle k
  | Grant task cap => Return (Kernel.grant_capability task (Cap.mk cap) k).2
  | GrantLease task cap lease =>
      Return (Kernel.grant_capability_with_lease task (Cap.mk cap) lease k).2
  | Revoke cap owner reason => Return (Kernel.revoke_capability cap owner reason k).2
  | Drop cap owner => Return (Kernel.drop_capability cap owner k).2
  | Delegate cap from_task to_task => Return (Kernel.delegate_capability cap from_task to_task k).2
  | Spawn d desc => after (Kernel.spawn_task d desc k)
  | SpawnWithIdentity d desc kind domain parent creator =>
      after (Kernel.spawn_task_with_identity d desc kind domain parent creator k)
  | Terminate drawn id reason => Return (Kernel.terminate_task_with_reason drawn id reason k)
  | CreateIdentity meta => Return (Kernel.create_identity meta k).2
  | ConsumeCpu e n => after (Kernel.try_consume_cpu_ticks e n k)
  | ConsumeStage e s => after (Kernel.try_consume_pipeline_stage e s k)
  | ConsumePacket e o => after (Kernel.try_consume_packet e o k)
  | ConsumeStorage e o => after (Kernel.try_consume_storage_op e o k)
  | RegisterService s c => Return (Kernel.register_service s c k).2
  | RegisterWithSchema s c p => Return (Kernel.register_service_with_schema s c p k).2
  | SetSchemaPolicy s p => Return (Kernel.set_service_schema_policy s p k)
  | GrantAccess c id mode => Return (Kernel.grant_channel_access c id mode k).2
  | RevokeAccess c id => Return (Kernel.revoke_channel_access c id k).2
  | SetReceiveContext id => Return (Kernel.set_receive_context id k)
  | ClearReceiveContext => Return (Kernel.clear_receive_context k)
  | CreateSpace sid e => after (Kernel.create_address_space sid e k)
  | Allocate rid cap size p b e => after (Kernel.allocate_region rid cap size p b e k)
  | AllocateOp rid cap size p b e => after (Kernel.allocate_region_op rid cap size p b e k)
  | Access cap a e => Return (Kernel.access_region cap a e k).2
  | Activate drawn e => Return (Kernel.activate_address_space drawn e k).2
  | EnableSmp cores => Return (Kernel.enable_smp cores k)
  | ClearExitNotifications => Return (Kernel.clear_exit_notifications k)
  end.

(** The capability an operation may grant. *)
Definition grants (o : t) : option N :=
  match o with Grant _ c | GrantLease _ c _ => Some c | _ => None end.
(** The identity an operation registers. *)
Definition registers (o : t) : option IdentityMetadata.t :=
  match o with CreateIdentity m => Some m | _ => None end.

(** Identifiers drawn for new tasks are unused. *)
Definition fresh (o : t) (k : Kernel.t) : Prop :=
  match o with Spawn d _ | SpawnWithIdentity d _ _ _ _ _ => fresh_task d k | _ => True end.
End KOp.

(** What the actions of an operation can be. *)
Definition allowed (o : KOp.t) (a : Act.t) : Prop :=
  match a with
  | Act.Grant c _ => KOp.grants o = Some c
  | Act.Identity m => KOp.registers o = Some m
  | _ => True
  end.

Lemma quiet_allowed o a : quiet a → allowed o a.
Proof. by destruct a. Qed.

Section refinement.
Context `{UuidFormat} `{DefaultHasher}.

Lemma after_inv {A} (m : outcome (A * Kernel.t)) k' :
  (r ← m; Return r.2) = Return k' → ∃ x, m = Return (x, k').
Proof. intros ([x k1] & -> & [= <-])%bind_Return. eauto. Qed.

Lemma exec_refines (HO : HashOrder) o k k' :
  KOp.fresh o k → KOp.exec o k = Return k' → refines (allowed o) k k'.
Proof.
  intros Hf He.
  assert (refines quiet k k' → refines (allowed o) k k') as Hq
    by (apply refines_mono; intros a; apply quiet_allowed).
  destruct o; simpl in He;
    lazymatch goal with
    | |- refines (allowed (KOp.Grant _ _)) _ _ => idtac
    | |- refines (allowed (KOp.GrantLease _ _ _)) _ _ => idtac
    | |- refines (allowed (KOp.CreateIdentity _)) _ _ => idtac
    | _ => apply Hq
    end; clear Hq; try (apply after_inv in He as [x He]);
    try (injection He as <-); simpl in Hf.
  - apply (refines_one quiet (Act.NewChannel (Drawn.channel d) (Kernel.channel_capacity k)));
      [done|]. exact (step_new_channel _ _ (view k)).
  - by eapply send_refines.
  - by eapply receive_refines.
  - by eapply advance_time_refines.
  - by eapply (sleep_steady (refines quiet)).
  - apply (preempt_steady (refines quiet)).
  - by eapply (run_for_ticks_steady (refines quiet)).
  - by eapply (run_for_steps_steady (refines quiet)).
  - by eapply (run_until_idle_steady (refines quiet)).
  - unfold Kernel.grant_capability.
    destruct (bool_decide (is_Some (Kernel.tasks k !! task))) eqn:Et; simpl; [|done].
    apply bool_decide_eq_true in Et. by apply grant_refines.
  - unfold Kernel.grant_capability_with_lease.
    destruct (bool_decide (is_Some (Kernel.tasks k !! task))) eqn:Et; simpl; [|done].
    apply bool_decide_eq_true in Et. by apply grant_refines.
  - apply revoke_refines.
  - apply drop_refines.
  - apply delegate_refines.
  - by eapply spawn_refines.
  - by eapply spawn_identity_refines.
  - apply terminate_refines.
  - apply (refines_one _ (Act.Identity meta)); [done|]. exact (step_identity meta (view k)).
  - by eapply cpu_refines.
  - eapply consume_unit_refines; [apply adds_stage|exact He].
  - eapply consume_unit_refines; [apply adds_packet|exact He].
  - eapply consume_unit_refines; [apply adds_storage|exact He].
  - unfold Kernel.register_service. by case_bool_decide; apply refines_view.
  - unfold Kernel.register_service_with_schema, Kernel.register_service.
    by case_bool_decide; apply refines_view.
  - by apply refines_view.
  - by apply refines_view.
  - unfold Kernel.revoke_channel_access. destruct (Kernel.channel_access k !! c); [|done].
    destruct (ChannelAccess.is_empty _); by apply refines_view.
  - by apply refines_view.
  - by apply refines_view.
  - by eapply create_space_refines.
  - by eapply allocate_refines.
  - by eapply allocate_op_refines.
  - apply access_refines.
  - apply activate_refines.
  - by apply refines_view.
  - by apply refines_view.
Qed.

(** Histories: any operations, in any order, with any outcome, whose drawn
    identifiers are unused and which satisfy [ok]. *)
Inductive kreach (ok : KOp.t → Kernel.t → Prop) (k0 : Kernel.t) : Kernel.t → Prop :=
| kreach_refl : kreach ok k0 k0
| kreach_step k k' o (HO : HashOrder) :
    kreach ok k0 k → KOp.fresh o k → ok o k → KOp.exec o k = Return k' → kreach ok k0 k'.

(** An invariant of the machine is an invariant of the kernel. *)
Lemma kreach_invariant (ok : KOp.t → Kernel.t → Prop) (I : KView.t → Prop) k0 k :
  I (view k0) →
  (∀ o k1 a v v', ok o k1 → allowed o a → I v → astep a v v' → I v') →
  kreach ok k0 k → I (view k).
Proof.
  intros Hinit Hstep. induction 1 as [|k k' o HO Hr IH Hf Hok He]; [done|].
  destruct (exec_refines HO o k k' Hf He) as (tr & Htr & Hs).
  eapply (steps_invariant (allowed o) I); [|done..]. intros a v1 v2. by apply (Hstep o k).
Qed.
End refinement.
