(* ===== verification/KernelProps.v ===== *)
(** * Safety of the kernel

    Invariants of the abstract machine of [KernelSpec.v], and with them theorems about
    every history of kernel calls: time, capabilities and leases, budgets and
    cancellation, channel capacity. *)

From S2P Require Import Prelude CoreTypes Debug Resources Identity Ipc Policy Queue AuditLogs.
From S2P Require Import Faults Sched SchedProps Smp AddrSpace SyscallGate Kernel KernelSpec.
Open Scope string_scope.
Open Scope list_scope.
Open Scope N_scope.
Import KView.

Implicit Types (v : KView.t) (k : Kernel.t).

(** ** Invariants of the machine *)

(** Time is the tick count times the resolution; the scheduler has the same ticks. *)
Definition time_inv (v : KView.t) : Prop :=
  time v = ticks v * npt v ∧ Scheduler.current_ticks (sched v) = ticks v.

Lemma enqueue_runnable_ticks id s :
  Scheduler.current_ticks (Scheduler.enqueue_runnable id s) = Scheduler.current_ticks s.
Proof. by destruct (enqueue_runnable_eq id s) as (q & -> & _). Qed.

Lemma exec_ticks `{HashOrder} o s s' :
  (∀ d, o ≠ SchedOp.Tick d) → SchedOp.exec o s = Return s' →
  Scheduler.current_ticks s' = Scheduler.current_ticks s.
Proof.
  intros Hn He. destruct o; simpl in He; try injection He as <-; try by destruct (Hn delta).
  - unfold Scheduler.enqueue. by rewrite enqueue_runnable_ticks.
  - unfold Scheduler.dequeue_next. by destruct (Scheduler.pick_next s) as [[?|] ?].
  - unfold Scheduler.set_real_time_params. destruct (_ || _ || _); [done|].
    destruct (1000000 <? _); [done|]. destruct (Scheduler.tasks s !! id); [|done].
    destruct (bool_decide _ && bool_decide _); [|done]. simpl. by rewrite enqueue_runnable_ticks.
  - unfold Scheduler.preempt_current. destruct (Scheduler.current_task s) as [id|]; [|done].
    simpl. destruct (Scheduler.tasks s !! id) as [info|]; [|done]. case_bool_decide; [|done].
    destruct (Scheduler.budget_spent info); [done|]. simpl. by rewrite enqueue_runnable_ticks.
  - unfold Scheduler.block_task, Scheduler.leave_queue. by case_bool_decide.
  - by destruct (unblock_task_frame id s) as (_ & ? & _).
  - unfold Scheduler.exit_task, Scheduler.leave_queue. simpl. by case_bool_decide.
  - unfold Scheduler.cancel_task, Scheduler.leave_queue. simpl. by case_bool_decide.
  - by destruct (wake_ready_tasks_frame s) as [_ ?].
Qed.

Lemma time_inv_step a v v' : time_inv v → astep a v v' → time_inv v' ∧ time v ≤ time v' ∧
  npt v' = npt v ∧ ticks v ≤ ticks v'.
Proof.
  intros [Ht Hs] Hstep. destruct Hstep; unfold time_inv; simpl; try (split_and!; done || lia).
  - match goal with H : Scheduler.on_tick_advanced _ _ = _ |- _ => apply tick_ticks in H end.
    split_and!; [done|congruence|rewrite Ht; apply N.mul_le_mono_r; lia|done|lia].
  - match goal with H : SchedOp.exec _ _ = _ |- _ => apply exec_ticks in H; [|done] end.
    split_and!; [done|congruence|done|done|done].
Qed.

(** The scheduler inside the kernel is well-formed, and its counters in range. *)
Definition sched_inv (v : KView.t) : Prop := inv False (sched v) ∧ table_ok (sched v).

Lemma sched_inv_step a v v' : sched_inv v → astep a v v' → sched_inv v'.
Proof.
  intros [Hw Ht] Hstep. destruct Hstep; simpl; try by split.
  - split; simpl; [by eapply on_tick_advanced_inv|by eapply on_tick_advanced_table].
  - split; simpl; [by eapply exec_inv|by eapply exec_table_ok].
Qed.

(** A capability that confers authority has a living owner. *)
Definition owner_inv (v : KView.t) : Prop :=
  ∀ c m, caps v !! c = Some m → CapabilityMetadata.status m = CapabilityStatus.Valid →
         is_Some (tasks v !! CapabilityMetadata.owner m).

Lemma owner_inv_insert c m v :
  owner_inv v →
  (CapabilityMetadata.status m = CapabilityStatus.Valid →
   is_Some (tasks v !! CapabilityMetadata.owner m)) →
  owner_inv (v <| caps ::= <[c := m]> |>).
Proof.
  intros Hv Hm c' m'. simpl. rewrite lookup_insert. case_decide; [|apply Hv].
  by intros [= <-].
Qed.

Lemma owner_inv_step a v v' : owner_inv v → astep a v v' → owner_inv v'.
Proof.
  intros Hv Hstep. destruct Hstep; try done; try by apply owner_inv_insert.
  - intros c m Hm Hs. simpl. rewrite lookup_insert. case_decide; [done|]. by eapply Hv.
  - intros c m. simpl. rewrite lookup_fmap. intros (m0 & Hm0 & ->)%fmap_Some.
    unfold retire_entry. case_bool_decide as Ho; [done|]. intros Hs.
    rewrite lookup_delete_ne by done. by eapply Hv.
Qed.

(** Usage respects every limit of every budget. *)
Definition budget_inv (v : KView.t) : Prop :=
  ∀ e i b, idents v !! e = Some i → IdentityMetadata.budget i = Some b →
           ResourceSpec.within (IdentityMetadata.usage i) b.

Lemma budget_inv_step a v v' :
  (∀ m b, a = Act.Identity m → IdentityMetadata.budget m = Some b →
          ResourceSpec.within (IdentityMetadata.usage m) b) →
  budget_inv v → astep a v v' → budget_inv v'.
Proof.
  intros Hid Hv Hstep. destruct Hstep; try done; intros e' i' b'; simpl.
  - rewrite lookup_alter. case_decide; [|apply Hv]. subst.
    intros (i0 & Hi0 & ->)%fmap_Some. simpl. intros Hb. simplify_eq. eauto.
  - rewrite lookup_insert. case_decide; [|apply Hv]. intros [= <-]. congruence.
  - rewrite lookup_insert. case_decide; [|apply Hv]. intros [= <-]. eauto.
Qed.

(** No queue holds more than its capacity. *)
Definition queue_inv (v : KView.t) : Prop :=
  ∀ c ch, channels v !! c = Some ch →
          MessageQueue.len (Channel.queue ch) ≤ MessageQueue.capacity (Channel.queue ch).

Lemma queue_inv_insert c q v :
  queue_inv v → MessageQueue.len q ≤ MessageQueue.capacity q →
  queue_inv (v <| channels ::= <[c := Channel.mk q]> |>).
Proof.
  intros Hv Hq c' ch'. simpl. rewrite lookup_insert. case_decide; [|apply Hv]. by intros [= <-].
Qed.

Lemma queue_inv_step a v v' : queue_inv v → astep a v v' → queue_inv v'.
Proof.
  intros Hv Hstep. destruct Hstep as [| | | | |c n v|c m ch q v Hc Hp|c l ch v Hc Hl|c m ch q v Hc Hp
    | | | | | | |]; try done; apply queue_inv_insert; try done.
  - unfold MessageQueue.len, len. simpl. lia.
  - pose proof (bf_bound_push m (Channel.queue ch) (Hv c ch Hc)) as Hb. simpl in Hb.
    by rewrite Hp in Hb.
  - specialize (Hv c ch Hc). unfold MessageQueue.len, len in *. simpl. by rewrite Hl.
  - specialize (Hv c ch Hc). unfold MessageQueue.pop in Hp.
    destruct (MessageQueue.messages (Channel.queue ch)) as [|x l] eqn:E; [done|].
    injection Hp as _ <-. unfold MessageQueue.len, len in *. rewrite E in Hv. simpl in *. lia.
Qed.

(** ** Capabilities over time *)

(** No task can use [c]. *)
Definition dead_cap (c : N) (v : KView.t) : Prop :=
  ∀ m, caps v !! c = Some m → ¬ live_entry (time v) m.

Lemma live_entry_mono t t' m : t ≤ t' → live_entry t' m → live_entry t m.
Proof.
  intros Ht (Hs & Hr & Hl). split_and!; [done|done|].
  destruct (CapabilityMetadata.lease_expires_at_nanos m); [lia|done].
Qed.

(** Entry updates that never revive. *)
Lemma dead_cap_insert c c' m m' v :
  dead_cap c v → caps v !! c' = Some m → (live_entry (time v) m' → live_entry (time v) m) →
  dead_cap c (v <| caps ::= <[c' := m']> |>).
Proof.
  intros Hd Hm Hlive x. simpl. rewrite lookup_insert. case_decide; [|apply Hd].
  intros [= <-] Hx%Hlive. subst. by eapply Hd.
Qed.

Lemma dead_cap_step c a v v' :
  (∀ m, a ≠ Act.Grant c m) → time_inv v ∧ dead_cap c v → astep a v v' → time_inv v' ∧ dead_cap c v'.
Proof.
  intros Ha [Ht Hd] Hstep. pose proof (time_inv_step a v v' Ht Hstep) as (Ht' & Hle & _).
  split; [done|]. destruct Hstep; try done.
  - intros m Hm Hl. simpl in Hm. apply (Hd m Hm). by eapply live_entry_mono.
  - intros x. simpl. rewrite lookup_insert. case_decide; [|apply Hd]. subst. by destruct (Ha m).
  - eapply dead_cap_insert; [done|done|]. by intros (Hx & _).
  - eapply dead_cap_insert; [done|done|]. done.
  - intros x. simpl. rewrite lookup_fmap. intros (m0 & Hm0 & ->)%fmap_Some.
    unfold retire_entry. case_bool_decide; [by intros (Hx & _)|by apply Hd].
Qed.

(** Whether or not it is still valid, the entry of [c] has the lease [t]. *)
Definition lease_inv (c t : N) (v : KView.t) : Prop :=
  ∀ m, caps v !! c = Some m → CapabilityMetadata.lease_expires_at_nanos m = Some t.

Lemma lease_inv_step c t a v v' :
  (∀ m, a ≠ Act.Grant c m) → lease_inv c t v → astep a v v' → lease_inv c t v'.
Proof.
  intros Ha Hl Hstep. destruct Hstep; try done; intros x; simpl.
  - rewrite lookup_insert. case_decide; [|apply Hl]. subst. by destruct (Ha m).
  - rewrite lookup_insert. case_decide; [|apply Hl]. subst. intros [= <-]. simpl. by apply Hl.
  - rewrite lookup_insert. case_decide; [|apply Hl]. subst. intros [= <-]. simpl. by apply Hl.
  - rewrite lookup_fmap. intros (m0 & Hm0 & ->)%fmap_Some. unfold retire_entry.
    case_bool_decide; simpl; by apply Hl.
Qed.

(** A cancelled identity stays cancelled. *)
Lemma cancelled_step e a v v' :
  is_Some (cancelled v !! e) → astep a v v' → is_Some (cancelled v' !! e).
Proof.
  intros He Hstep. destruct Hstep; try done. simpl. rewrite lookup_insert. by case_decide.
Qed.

(** ** From the machine to the kernel *)
Definition any_call (o : KOp.t) (k : Kernel.t) : Prop := True.
Definition no_grant_of (c : N) (o : KOp.t) (k : Kernel.t) : Prop := KOp.grants o ≠ Some c.

Section kernel.
Context `{UuidFormat} `{DefaultHasher}.

(** A freshly built kernel, whatever its configuration. *)
Record initial (k : Kernel.t) : Prop := {
  ini_ticks : SimTimerDevice.ticks (Kernel.timer k) = 0;
  ini_time : Kernel.now_nanos k = 0;
  ini_tasks : Kernel.tasks k = ∅;
  ini_channels : Kernel.channels k = ∅;
  ini_caps : Kernel.capability_table k = ∅;
  ini_idents : Kernel.identity_table k = ∅;
  ini_sched : ∃ c, Kernel.scheduler k = Scheduler.with_config c
}.

Lemma initial_invs k :
  initial k → time_inv (view k) ∧ sched_inv (view k) ∧ owner_inv (view k) ∧
              budget_inv (view k) ∧ queue_inv (view k).
Proof.
  intros [E1 E2 E3 E4 E5 E6 [c E7]]. unfold time_inv, sched_inv, owner_inv, budget_inv, queue_inv.
  simpl. rewrite E1, E2, E4, E5, E6, E7.
  pose proof (with_config_inv False c). pose proof (with_config_table_ok c).
  split_and!; try done; intros; by rewrite lookup_empty in *.
Qed.

Lemma reach_time k0 k ok : initial k0 → kreach ok k0 k → time_inv (view k).
Proof.
  intros (Hi & _)%initial_invs. apply kreach_invariant; [done|].
  intros o k1 a v v' _ _ Hv Hs. by apply (time_inv_step a v v').
Qed.

Lemma reach_sched k0 k ok : initial k0 → kreach ok k0 k → sched_inv (view k).
Proof.
  intros (_ & Hi & _)%initial_invs. apply kreach_invariant; [done|].
  intros o k1 a v v' _ _ Hv Hs. by eapply sched_inv_step.
Qed.

Lemma reach_owner k0 k ok : initial k0 → kreach ok k0 k → owner_inv (view k).
Proof.
  intros (_ & _ & Hi & _)%initial_invs. apply kreach_invariant; [done|].
  intros o k1 a v v' _ _ Hv Hs. by eapply owner_inv_step.
Qed.

Lemma valid_iff c id k :
  Kernel.is_capability_valid c id k = true ↔
  ∃ m, Kernel.capability_table k !! c = Some m ∧ live_entry (Kernel.now_nanos k) m ∧
       is_Some (Kernel.tasks k !! id) ∧ CapabilityMetadata.owner m = id.
Proof.
  rewrite <- validate_ok. unfold Kernel.is_capability_valid.
  destruct (Kernel.validate_capability c id k) as [[]|]; simpl; naive_solver.
Qed.

(** In a reachable state, "no task can use it" and a dead entry are the same. *)
Lemma dead_cap_iff c k :
  owner_inv (view k) →
  dead_cap c (view k) ↔ ∀ id, Kernel.is_capability_valid c id k = false.
Proof.
  intros Ho. split.
  - intros Hd id. apply not_true_is_false. rewrite valid_iff.
    intros (m & Hm & Hl & _). by apply (Hd m).
  - intros Hv m Hm Hl. specialize (Hv (CapabilityMetadata.owner m)).
    apply not_true_iff_false in Hv. apply Hv, valid_iff. exists m.
    split_and!; [done|done| |done]. apply (Ho c m Hm). apply Hl.
Qed.

Lemma no_grant_allowed c o k a m : no_grant_of c o k → allowed o a → a ≠ Act.Grant c m.
Proof. unfold no_grant_of. intros Hn Ha ->. simpl in Ha. done. Qed.

Lemma dead_cap_reach c k k' :
  time_inv (view k) → dead_cap c (view k) → kreach (no_grant_of c) k k' → dead_cap c (view k').
Proof.
  intros Ht Hd Hr.
  apply (kreach_invariant (no_grant_of c) (λ v, time_inv v ∧ dead_cap c v) k k'); [done| |done].
  intros o k1 a v v' Hok Ha. apply dead_cap_step. intros m. by eapply no_grant_allowed.
Qed.

Lemma revoke_dead c owner reason k k' :
  Kernel.revoke_capability c owner reason k = (Ok tt, k') → dead_cap c (view k').
Proof.
  unfold Kernel.revoke_capability.
  destruct (Kernel.checked_cap _ c owner k) as [u|] eqn:Ec; [|done].
  apply checked_cap_ok, validate_ok in Ec as (m & Hm & _). rewrite Hm.
  intros [= <-] x. simpl. rewrite lookup_insert_eq. intros [= <-]. by intros (Hx & _).
Qed.

Lemma drop_dead c owner k k' :
  Kernel.drop_capability c owner k = (Ok tt, k') → dead_cap c (view k').
Proof.
  unfold Kernel.drop_capability.
  destruct (Kernel.checked_cap _ c owner k) as [u|] eqn:Ec; [|done].
  apply checked_cap_ok, validate_ok in Ec as (m & Hm & _). rewrite Hm.
  intros [= <-] x. simpl. rewrite lookup_insert_eq. intros [= <-]. by intros (Hx & _).
Qed.

(** What termination does to the parts that decide validity. *)
Lemma terminate_view `{HashOrder} drawn id reason k :
  let k1 := Kernel.terminate_task_with_reason drawn id reason k in
  Kernel.capability_table k1 = retire_entry id <$> Kernel.capability_table k ∧
  Kernel.tasks k1 = delete id (Kernel.tasks k) ∧ Kernel.now_nanos k1 = Kernel.now_nanos k.
Proof.
  simpl. unfold Kernel.terminate_task_with_reason.
  set (kr := (Kernel.retire_identity drawn id reason k) <| Kernel.tasks ::= delete id |>).
  assert (Kernel.capability_table kr = Kernel.capability_table k ∧
    Kernel.tasks kr = delete id (Kernel.tasks k) ∧ Kernel.now_nanos kr = Kernel.now_nanos k)
    as (E1 & E2 & E3).
  { unfold kr, Kernel.retire_identity. by destruct (Kernel.task_to_identity k !! id). }
  pose proof (invalidate_table id kr) as Hc. destruct (invalidate_frame id kr) as (t & lg & Ef).
  rewrite Ef in *. rewrite E1 in Hc. simpl in Hc. subst t.
  destruct (Kernel.smp _); simpl; by rewrite ?E2.
Qed.

Lemma evaluate_policy_decision e ctx k :
  (Kernel.evaluate_policy e ctx k).1 =
  match Kernel.policy_engine k with
  | Some engine => PolicyEngine.evaluate engine e ctx
  | None => PolicyDecision.Allow None
  end.
Proof. unfold Kernel.evaluate_policy. by destruct (Kernel.policy_engine k). Qed.

(** The transfer at the end of a delegation. *)
Lemma transfer_spec c from_task to_task k k0 :
  view k = view k0 → Kernel.is_capability_valid c from_task k0 = true →
  is_Some (Kernel.tasks k0 !! to_task) →
  match Kernel.transfer_capability c from_task to_task k with
  | (Ok _, k1) =>
      Kernel.is_capability_valid c to_task k1 = true ∧
      (from_task ≠ to_task → Kernel.is_capability_valid c from_task k1 = false) ∧
      (∀ c', c' ≠ c → Kernel.capability_table k1 !! c' = Kernel.capability_table k0 !! c')
  | (Err _, _) => False
  end.
Proof.
  intros Ev (m & Hm & Hl & Hf & Ho)%valid_iff Ht.
  assert (Kernel.capability_table k = Kernel.capability_table k0) as Ec by exact (f_equal caps Ev).
  assert (Kernel.tasks k = Kernel.tasks k0) as Et by exact (f_equal tasks Ev).
  assert (Kernel.now_nanos k = Kernel.now_nanos k0) as En by exact (f_equal time Ev).
  unfold Kernel.transfer_capability. rewrite Ec, Hm. split_and!.
  - apply valid_iff. exists (m <| CapabilityMetadata.owner := to_task |>). simpl.
    rewrite lookup_insert_eq, Et. split_and!; try done. by rewrite <- En in Hl.
  - intros Hne. apply not_true_is_false. rewrite valid_iff. simpl. rewrite lookup_insert_eq.
    by intros (x & [= <-] & _ & _ & ?).
  - intros c' Hne. simpl. by rewrite Ec, lookup_insert_ne.
Qed.
End kernel.

(** ** Concrete histories *)
#[local] Existing Instance sample_format.
#[local] Existing Instance sample_hasher.

Definition freshb (o : KOp.t) (k : Kernel.t) : bool :=
  match o with
  | KOp.Spawn d _ | KOp.SpawnWithIdentity d _ _ _ _ _ =>
      bool_decide (Kernel.tasks k !! Drawn.task d = None)
      && bool_decide (Scheduler.tasks (Kernel.scheduler k) !! Drawn.task d = None)
  | _ => true
  end.
Fixpoint krun (ops : list KOp.t) (k : Kernel.t) : option Kernel.t :=
  match ops with
  | [] => Some k
  | o :: ops' =>
      if freshb o k then
        match @KOp.exec canonical_order _ _ o k with
        | Return k1 => krun ops' k1
        | _ => None
        end
      else None
  end.

Lemma freshb_sound o k : freshb o k = true → KOp.fresh o k.
Proof.
  destruct o; try done; simpl;
    intros [?%bool_decide_eq_true ?%bool_decide_eq_true]%andb_true_iff; by split.
Qed.

Lemma krun_reach ok ops k0 k k' :
  (∀ o x, o ∈ ops → ok o x) → kreach ok k0 k → krun ops k = Some k' → kreach ok k0 k'.
Proof.
  revert k. induction ops as [|o ops IH]; intros k Hok Hk; simpl; [by intros [= <-]|].
  destruct (freshb o k) eqn:Ef; [|done].
  destruct (@KOp.exec canonical_order _ _ o k) as [k1| |] eqn:E; [|done..].
  apply IH; [intros o' x Ho'; apply Hok; by right|].
  eapply (kreach_step ok k0 k k1 o canonical_order); [done|by apply freshb_sound| |done].
  apply Hok. by left.
Qed.

Lemma krun_default_reach ok ops k :
  (∀ o x, o ∈ ops → ok o x) → kreach ok k (default k (krun ops k)).
Proof.
  intros Hok. destruct (krun ops k) as [k'|] eqn:E; simpl; [|constructor].
  eapply (krun_reach ok ops k k); [done|constructor|done].
Qed.

Definition sample_kernel : Kernel.t := Kernel.with_tick_resolution (Duration.from_nanos 1000).
Definition drawn (n : N) : Drawn.t :=
  Drawn.mk (TaskId.mk n) (ExecutionId.mk (100 + n)) (ChannelId.mk (200 + n))
    (AddressSpaceId.mk (300 + n)) (MemoryRegionId.mk (400 + n)).
Definition two_tasks : list KOp.t :=
  [KOp.Spawn (drawn 1) (TaskDescriptor.new "a"); KOp.Spawn (drawn 2) (TaskDescriptor.new "b");
   KOp.CreateChannel (drawn 3); KOp.Grant (TaskId.mk 1) 7].
Definition sample_state (ops : list KOp.t) : Kernel.t :=
  default sample_kernel (krun ops sample_kernel).

Lemma sample_initial : initial sample_kernel.
Proof. split; try done. by eexists. Qed.

Lemma sample_reach ops : kreach any_call sample_kernel (sample_state ops).
Proof. by apply krun_default_reach. Qed.

Module KernelSafety.
Section theorems.
Context `{UuidFormat} `{DefaultHasher}.

(** C1: the kernel refines the abstract machine: every history of kernel calls is, on the
    abstract view (tasks, capabilities, identities, channels, time, scheduler, address
    spaces), a sequence of the machine's guarded actions, in which a capability is
    granted or an identity registered only by a call that was asked to do exactly that,
    and a new task never takes an identifier in use. *)
Theorem kernel_refines_machine ok k0 k :
  kreach ok k0 k →
  ∃ tr, steps tr (view k0) (view k) ∧
        Forall (λ a, ∃ o k1, ok o k1 ∧ KOp.fresh o k1 ∧ allowed o a) tr.
Proof.
  induction 1 as [|k k' o HO Hr (tr & Hs & Ha) Hf Hok He].
  - exists []. split; constructor.
  - destruct (exec_refines HO o k k' Hf He) as (tr' & Ha' & Hs').
    exists (tr ++ tr'). split; [by eapply steps_app|]. apply Forall_app. split; [done|].
    eapply Forall_impl; [exact Ha'|]. intros a Haa. by exists o, k.
Qed.

(** In every state the kernel can reach, its clock is exactly the number of timer
    ticks times the tick resolution, the scheduler's tick counter agrees with the
    timer, and no operation moves the clock backwards. *)
Theorem kernel_time_is_consistent k0 k :
  initial k0 → kreach any_call k0 k →
  Kernel.now_nanos k = SimTimerDevice.ticks (Kernel.timer k) * Kernel.nanos_per_tick k ∧
  Scheduler.current_ticks (Kernel.scheduler k) = SimTimerDevice.ticks (Kernel.timer k) ∧
  ∀ `{HashOrder} o k', KOp.fresh o k → KOp.exec o k = Return k' →
    Kernel.now_nanos k ≤ Kernel.now_nanos k'.
Proof.
  intros Hi Hr. pose proof (reach_time k0 k any_call Hi Hr) as [Ht Hs].
  split_and!; [done|done|]. intros HO o k' Hf He.
  destruct (exec_refines HO o k k' Hf He) as (tr & _ & Htr).
  assert (time_inv (view k') ∧ Kernel.now_nanos k ≤ time (view k')) as [_ ?]; [|done].
  apply (steps_invariant (λ _, True) (λ v, time_inv v ∧ Kernel.now_nanos k ≤ time v) tr (view k));
    [|by apply Forall_true|done|done].
  intros a v1 v2 _ [Hv1 Hle] Hstep. destruct (time_inv_step a v1 v2 Hv1 Hstep) as (? & ? & _).
  split; [done|lia].
Qed.

(** C9: a capability is valid for a task exactly when the table holds an entry for it
    that is owned by that task, has status [Valid], is not revoked and has no expired
    lease, and the task is alive; hence at most one task can use it at any time. *)
Theorem capability_valid_iff c id k :
  (Kernel.is_capability_valid c id k = true ↔
   ∃ m, Kernel.capability_table k !! c = Some m ∧ live_entry (Kernel.now_nanos k) m ∧
        is_Some (Kernel.tasks k !! id) ∧ CapabilityMetadata.owner m = id) ∧
  (∀ id', Kernel.is_capability_valid c id k = true →
          Kernel.is_capability_valid c id' k = true → id = id').
Proof.
  split; [apply valid_iff|]. intros id' (m & Hm & _ & _ & <-)%valid_iff (m' & Hm' & _ & _ & <-)%valid_iff.
  by simplify_eq.
Qed.

(** C2: revocation and dropping are final: once its owner has revoked or dropped a
    capability, no task can use it in any later state, whatever is called (including
    delegations, terminations, spawns and the passing of time), unless the same
    identifier is granted again. *)
Theorem revoked_capability_stays_dead k0 k c owner reason k1 k2 id :
  initial k0 → kreach any_call k0 k →
  Kernel.revoke_capability c owner reason k = (Ok tt, k1) ∨
    Kernel.drop_capability c owner k = (Ok tt, k1) →
  kreach (no_grant_of c) k1 k2 →
  Kernel.is_capability_valid c id k2 = false.
Proof.
  intros Hi Hr Hop Hr2.
  assert (dead_cap c (view k1)) as Hd
    by (destruct Hop as [?|?]; [by eapply revoke_dead|by eapply drop_dead]).
  assert (kreach any_call k0 k1) as Hr1.
  { destruct Hop as [E|E].
    - apply (kreach_step any_call k0 k k1 (KOp.Revoke c owner reason) canonical_order); try done.
      simpl. by rewrite E.
    - apply (kreach_step any_call k0 k k1 (KOp.Drop c owner) canonical_order); try done.
      simpl. by rewrite E. }
  apply not_true_is_false. rewrite valid_iff. intros (m & Hm & Hl & _).
  by apply (dead_cap_reach c k1 k2 (reach_time _ _ _ Hi Hr1) Hd Hr2 m).
Qed.

(** C6: terminating a task takes all its capabilities away for good: none of them is
    usable by anyone afterwards unless it is granted again, and what other tasks can
    use at the moment of the termination does not change. *)
Theorem terminated_task_loses_capabilities k0 k drawn id reason `{HashOrder} :
  initial k0 → kreach any_call k0 k →
  let k1 := Kernel.terminate_task_with_reason drawn id reason k in
  (∀ c m k2 id', Kernel.capability_table k !! c = Some m → CapabilityMetadata.owner m = id →
     kreach (no_grant_of c) k1 k2 → Kernel.is_capability_valid c id' k2 = false) ∧
  (∀ c id', id' ≠ id →
     Kernel.is_capability_valid c id' k1 = Kernel.is_capability_valid c id' k).
Proof.
  intros Hi Hr k1.
  destruct (terminate_view drawn id reason k) as (Ec & Et & En). fold k1 in Ec, Et, En.
  split.
  - intros c m k2 id' Hm Ho Hr2.
    assert (kreach any_call k0 k1) as Hr1.
    { by apply (kreach_step any_call k0 k k1 (KOp.Terminate drawn id reason) _). }
    assert (dead_cap c (view k1)) as Hd.
    { intros x. simpl. rewrite Ec, lookup_fmap, Hm. intros [= <-].
      unfold retire_entry. rewrite bool_decide_true by done. by intros (Hx & _). }
    apply not_true_is_false. rewrite valid_iff. intros (x & Hx & Hl & _).
    by apply (dead_cap_reach c k1 k2 (reach_time _ _ _ Hi Hr1) Hd Hr2 x).
  - intros c id' Hne. apply eq_true_iff_eq. rewrite !valid_iff, Ec, Et, En, lookup_fmap.
    rewrite lookup_delete_ne by done. split.
    + intros (m & (m0 & Hm0 & ->)%fmap_Some & Hl & Ht & Ho). unfold retire_entry in *.
      case_bool_decide; [by destruct Hl as (? & _)|]. by exists m0.
    + intros (m & Hm & Hl & Ht & Ho). exists m. rewrite Hm. simpl. unfold retire_entry.
      rewrite bool_decide_false by congruence. done.
Qed.

(** C7: a lease cannot be outlived: after a capability was granted with a lease, no
    task (neither the grantee nor anyone it was delegated to) can use it in any state
    whose clock has reached the expiry time, unless it is granted again. *)
Theorem lease_cannot_be_outlived k0 k task c lease k1 k2 id :
  initial k0 → kreach any_call k0 k →
  Kernel.grant_capability_with_lease task (Cap.mk c) lease k = (Ok tt, k1) →
  kreach (no_grant_of c) k1 k2 →
  saturating_add (Kernel.now_nanos k) (Duration.as_nanos lease) ≤ Kernel.now_nanos k2 →
  Kernel.is_capability_valid c id k2 = false.
Proof.
  intros Hi Hr Hg Hr2 Hexp. unfold Kernel.grant_capability_with_lease in Hg.
  destruct (negb _); [done|]. injection Hg as <-.
  set (t := saturating_add (Kernel.now_nanos k) (Duration.as_nanos lease)) in *.
  assert (lease_inv c t (view k2)) as Hl.
  { apply (kreach_invariant (no_grant_of c) (lease_inv c t) _ k2) in Hr2; [done| |].
    - intros m. simpl. rewrite lookup_insert_eq. by intros [= <-].
    - intros o k3 a v v' Hok Ha. apply lease_inv_step. intros m. by eapply no_grant_allowed. }
  apply not_true_is_false. rewrite valid_iff. intros (m & Hm & (_ & _ & Hlt) & _).
  rewrite (Hl m Hm) in Hlt. lia.
Qed.

(** C8: delegation transfers authority: on success the delegating task held the
    capability and the policy engine, if the identities are known, allowed it; then
    the receiver can use it, the sender no longer can, and no other capability is
    affected.  On any refusal the capability table is unchanged. *)
Theorem delegation_transfers_authority c from_task to_task k :
  match Kernel.delegate_capability c from_task to_task k with
  | (Ok _, k1) =>
      Kernel.is_capability_valid c from_task k = true ∧
      (∀ ia ib engine, Kernel.identity_pair from_task to_task k = Some (ia, ib) →
         Kernel.policy_engine k = Some engine →
         PolicyDecision.is_allow (PolicyEngine.evaluate engine PolicyEvent.OnCapabilityDelegate
           (PolicyContext.for_capability_delegation ia ib c)) = true) ∧
      Kernel.is_capability_valid c to_task k1 = true ∧
      (from_task ≠ to_task → Kernel.is_capability_valid c from_task k1 = false) ∧
      (∀ c', c' ≠ c → Kernel.capability_table k1 !! c' = Kernel.capability_table k !! c')
  | (Err _, k1) => Kernel.capability_table k1 = Kernel.capability_table k
  end.
Proof.
  unfold Kernel.delegate_capability.
  destruct (Kernel.checked_cap _ c from_task k) as [u|] eqn:Ec; [|done].
  apply checked_cap_ok in Ec.
  assert (Kernel.is_capability_valid c from_task k = true) as Hv
    by (unfold Kernel.is_capability_valid; by rewrite Ec).
  destruct (bool_decide (is_Some (Kernel.tasks k !! to_task))) eqn:Et; simpl; [|done].
  apply bool_decide_eq_true in Et.
  destruct (Kernel.identity_pair from_task to_task k) as [[ia ib]|] eqn:Ep.
  2: { pose proof (transfer_spec c from_task to_task k k eq_refl Hv Et) as Ht.
       destruct (Kernel.transfer_capability c from_task to_task k) as [[u'|] k1]; [|done].
       naive_solver. }
  pose proof (evaluate_policy_view PolicyEvent.OnCapabilityDelegate
    (PolicyContext.for_capability_delegation ia ib c) k) as Hview.
  pose proof (evaluate_policy_decision PolicyEvent.OnCapabilityDelegate
    (PolicyContext.for_capability_delegation ia ib c) k) as Hdec.
  destruct (Kernel.evaluate_policy _ _ k) as [dec kp]. simpl in Hview, Hdec.
  assert (Kernel.capability_table kp = Kernel.capability_table k) as Hcp by exact (f_equal caps Hview).
  destruct dec as [derived|reason|action]; simpl; [|done..].
  set (kd := if negb (IdentityMetadata.same_domain ia ib) then _ else kp).
  assert (view kd = view k) as Hvd by (unfold kd; by destruct (negb _)).
  pose proof (transfer_spec c from_task to_task kd k Hvd Hv Et) as Ht.
  destruct (Kernel.transfer_capability c from_task to_task kd) as [[u'|] k1]; [|done].
  destruct Ht as (H1 & H2 & H3). split_and!; [done| |done|done|done].
  intros ia' ib' engine [= <- <-] Heng. rewrite Heng in Hdec. by rewrite <- Hdec.
Qed.
End theorems.

Lemma kernel_refines_machine_witness :
  ∃ tr, steps tr (view sample_kernel) (view (sample_state two_tasks)) ∧
        Forall (λ a, ∃ o k1, any_call o k1 ∧ KOp.fresh o k1 ∧ allowed o a) tr.
Proof. apply (kernel_refines_machine any_call), sample_reach. Defined.

Lemma kernel_time_is_consistent_witness :
  let k := sample_state (two_tasks ++ [KOp.AdvanceTime (Duration.mk 5500)]) in
  Kernel.now_nanos k = 5000 ∧
  Kernel.now_nanos k = SimTimerDevice.ticks (Kernel.timer k) * Kernel.nanos_per_tick k.
Proof.
  intros k. split; [by vm_compute|].
  apply (kernel_time_is_consistent sample_kernel k sample_initial (sample_reach _)).
Defined.

Lemma revoked_capability_stays_dead_witness :
  let k := sample_state two_tasks in
  let k1 := (Kernel.revoke_capability 7 (TaskId.mk 1) "done" k).2 in
  Kernel.is_capability_valid 7 (TaskId.mk 1) k = true ∧
  Kernel.is_capability_valid 7 (TaskId.mk 1) k1 = false.
Proof.
  intros k k1. split; [by vm_compute|].
  apply (revoked_capability_stays_dead sample_kernel k 7 (TaskId.mk 1) "done" k1 k1).
  - apply sample_initial.
  - apply sample_reach.
  - left. by vm_compute.
  - constructor.
Defined.

Lemma terminated_task_loses_capabilities_witness :
  let k := sample_state two_tasks in
  let k1 := @Kernel.terminate_task_with_reason canonical_order (AddressSpaceId.mk 9) (TaskId.mk 1)
              ExitReason.Normal k in
  ∃ m, Kernel.capability_table k !! 7 = Some m ∧
       Kernel.is_capability_valid 7 (TaskId.mk 2) k1 = false.
Proof.
  intros k k1. destruct (Kernel.capability_table k !! 7) as [m|] eqn:E; [|vm_compute in E; done].
  exists m. split; [done|].
  destruct (@terminated_task_loses_capabilities _ _ sample_kernel k (AddressSpaceId.mk 9)
    (TaskId.mk 1) ExitReason.Normal canonical_order sample_initial (sample_reach _)) as [Hc _].
  apply (Hc 7 m k1 (TaskId.mk 2)); [done| |constructor].
  vm_compute in E. by injection E as <-.
Defined.

Lemma lease_cannot_be_outlived_witness :
  let k := sample_state two_tasks in
  let k1 := (Kernel.grant_capability_with_lease (TaskId.mk 2) (Cap.mk 8) (Duration.mk 3000) k).2 in
  let k2 := default k1 (krun [KOp.Delegate 8 (TaskId.mk 2) (TaskId.mk 1);
                              KOp.AdvanceTime (Duration.mk 4000)] k1) in
  Kernel.is_capability_valid 8 (TaskId.mk 2) k1 = true ∧
  Kernel.is_capability_valid 8 (TaskId.mk 1) k2 = false.
Proof.
  intros k k1 k2. split; [by vm_compute|].
  apply (lease_cannot_be_outlived sample_kernel k (TaskId.mk 2) 8 (Duration.mk 3000) k1 k2).
  - apply sample_initial.
  - apply sample_reach.
  - by vm_compute.
  - apply krun_default_reach. intros o x Ho. unfold no_grant_of.
    repeat (apply elem_of_cons in Ho as [->|Ho]; [discriminate|]). by apply not_elem_of_nil in Ho.
  - by vm_compute.
Defined.
End KernelSafety.
