(* ===== verification/BudgetProps.v ===== *)
(** * Resource budgets of the kernel

    Theorems about [SimulatedKernel::try_consume_*], [cancel_identity] and memory
    charging: budgets are hard limits over every history of calls that registers identities
    within theirs, the functional behaviour of a charge on every branch, the finality of
    cancellation, and that the charge of memory ignores it. *)

From S2P Require Import Prelude CoreTypes Debug Resources Identity Ipc Policy Queue AuditLogs.
From S2P Require Import Faults Sched SchedProps Smp AddrSpace SyscallGate Kernel KernelSpec.
From S2P Require Import KernelProps.
Open Scope string_scope.
Open Scope list_scope.
Open Scope N_scope.
Import KView.

(** Identities registered from outside start within their budget. *)
Definition registers_within (o : KOp.t) (k : Kernel.t) : Prop :=
  ∀ m b, KOp.registers o = Some m → IdentityMetadata.budget m = Some b →
         ResourceSpec.within (IdentityMetadata.usage m) b.

Section budgets.
Context `{UuidFormat} `{DefaultHasher}.

Lemma reach_budget k0 k :
  initial k0 → kreach registers_within k0 k → budget_inv (view k).
Proof.
  intros Hi Hr. pose proof (initial_invs k0 Hi) as (_ & _ & _ & Hb & _).
  apply (kreach_invariant registers_within budget_inv k0 k); [done| |done].
  intros o k1 a v v' Hok Ha. apply budget_inv_step. intros m b -> Hm. by eapply Hok.
Qed.

Lemma reach_cancelled e k k' :
  Kernel.is_identity_cancelled e k = true → kreach any_call k k' →
  Kernel.is_identity_cancelled e k' = true.
Proof.
  unfold Kernel.is_identity_cancelled. rewrite !bool_decide_eq_true. intros He.
  apply (kreach_invariant any_call (λ v, is_Some (cancelled v !! e))); [done|].
  intros o k1 a v v' _ _. apply cancelled_step.
Qed.

Lemma reach_queue k0 k ok : initial k0 → kreach ok k0 k → queue_inv (view k).
Proof.
  intros (_ & _ & _ & _ & Hi)%initial_invs. apply kreach_invariant; [done|].
  intros o k1 a v v' _ _. apply queue_inv_step.
Qed.
End budgets.

(** What cancelling leaves alone. *)
Lemma cancel_frame `{HashOrder} eid reason k :
  let k' := Kernel.cancel_identity eid reason k in
  Kernel.identity_table k' = Kernel.identity_table k ∧
  Kernel.cancelled_identities k' = <[eid := reason]> (Kernel.cancelled_identities k) ∧
  Kernel.channels k' = Kernel.channels k ∧ Kernel.delayed_messages k' = Kernel.delayed_messages k ∧
  Kernel.fault_injector k' = Kernel.fault_injector k ∧
  Kernel.capability_table k' = Kernel.capability_table k ∧
  Kernel.channel_access k' = Kernel.channel_access k ∧
  Kernel.current_receive_task k' = Kernel.current_receive_task k.
Proof.
  simpl. unfold Kernel.cancel_identity, Kernel.cancel_scheduled.
  destruct (list_find _ _) as [[i [id e]]|]; [|done].
  by destruct (Kernel.smp _).
Qed.

(** The scheduled task of a cancelled identity is cancelled too. *)
Lemma cancel_stops_task `{HashOrder} eid reason id k :
  Kernel.smp k = None → Kernel.task_to_identity k !! id = Some eid →
  (∀ id', Kernel.task_to_identity k !! id' = Some eid → id' = id) →
  is_Some (Scheduler.tasks (Kernel.scheduler k) !! id) →
  Kernel.scheduler (Kernel.cancel_identity eid reason k)
    = Scheduler.cancel_task id (Kernel.scheduler k).
Proof.
  intros Hs Hid Huniq Ht. unfold Kernel.cancel_identity, Kernel.cancel_scheduled. simpl.
  destruct (list_find _ _) as [[i [id' e]]|] eqn:Ef.
  - apply list_find_Some in Ef as (Hl & He & _). simpl in He. subst e.
    apply list_elem_of_lookup_2, elem_of_hm_iter, Huniq in Hl as ->. simpl. by rewrite Hs.
  - exfalso. apply list_find_None in Ef. rewrite Forall_forall in Ef.
    by apply (Ef (id, eid)); [apply elem_of_hm_iter|].
Qed.

Lemma cancel_task_spec id s :
  is_Some (Scheduler.tasks s !! id) →
  let s' := Scheduler.cancel_task id s in
  Scheduler.task_state id s' = Some TaskState.Cancelled ∧
  id ∉ Scheduler.run_queue s' ∧ Scheduler.current_task s' ≠ Some id.
Proof.
  intros [i Hi]. simpl. unfold Scheduler.cancel_task, Scheduler.leave_queue, Scheduler.set_state,
    Scheduler.task_state, RunQueue.remove. simpl.
  case_bool_decide; simpl; rewrite lookup_alter_eq, Hi; simpl;
    (split_and!; [done|rewrite list_elem_of_filter; naive_solver|done]).
Qed.

(** A limit and the quantity used, for one resource. *)
Definition room {r} (limit : option (Quantity.t r)) (used amount : N) : Prop :=
  match limit with Some l => used + amount ≤ Quantity.val l | None => True end.

(** The three outcomes of a charge of [amount] units of one resource ([limit_of],
    [usage_of], [consume]) to the identity [eid], which is known and has a budget. *)
Definition charge_spec {r} (limit_of : ResourceBudget.t → option (Quantity.t r))
    (usage_of : ResourceUsage.t → Quantity.t r) (amount : N)
    (eid : ExecutionId.t) (k : Kernel.t) (res : result unit KernelError.t) (k' : Kernel.t) : Prop :=
  match Kernel.identity_table k !! eid with
  | Some i =>
      match IdentityMetadata.budget i with
      | Some b =>
          let used := Quantity.val (usage_of (IdentityMetadata.usage i)) in
          (Kernel.is_identity_cancelled eid k = true ∧ is_err res = true ∧ k' = k) ∨
          (Kernel.is_identity_cancelled eid k = false ∧ room (limit_of b) used amount ∧
             res = Ok tt ∧
             (∃ i', Kernel.identity_table k' !! eid = Some i' ∧
                IdentityMetadata.budget i' = Some b ∧
                Quantity.val (usage_of (IdentityMetadata.usage i')) = saturating_add used amount) ∧
             (∀ e, e ≠ eid → Kernel.identity_table k' !! e = Kernel.identity_table k !! e) ∧
             Kernel.cancelled_identities k' = Kernel.cancelled_identities k) ∨
          (Kernel.is_identity_cancelled eid k = false ∧ ¬ room (limit_of b) used amount ∧
             is_err res = true ∧ Kernel.identity_table k' = Kernel.identity_table k ∧
             Kernel.is_identity_cancelled eid k' = true)
      | None => True
      end
  | None => True
  end.

Section charges.
Context `{HashOrder} `{UuidFormat}.

Lemma accept_spec {r} (usage_of : ResourceUsage.t → Quantity.t r) amount eid u i b k event :
  Kernel.identity_table k !! eid = Some i → IdentityMetadata.budget i = Some b →
  Quantity.val (usage_of u)
    = saturating_add (Quantity.val (usage_of (IdentityMetadata.usage i))) amount →
  let k' := Kernel.record_resource event (Kernel.set_usage eid u k) in
  (∃ i', Kernel.identity_table k' !! eid = Some i' ∧ IdentityMetadata.budget i' = Some b ∧
     Quantity.val (usage_of (IdentityMetadata.usage i'))
       = saturating_add (Quantity.val (usage_of (IdentityMetadata.usage i))) amount) ∧
  (∀ e, e ≠ eid → Kernel.identity_table k' !! e = Kernel.identity_table k !! e) ∧
  Kernel.cancelled_identities k' = Kernel.cancelled_identities k.
Proof.
  intros Hi Hb Hu k'. unfold k', Kernel.set_usage. simpl. split_and!; [|by intros; rewrite lookup_alter_ne|done].
  exists (i <| IdentityMetadata.usage := u |>). rewrite lookup_alter_eq, Hi. done.
Qed.

Lemma exhaust_spec event resource eid k :
  let k' := Kernel.cancel_identity eid resource (Kernel.record_resource event k) in
  Kernel.identity_table k' = Kernel.identity_table k ∧ Kernel.is_identity_cancelled eid k' = true.
Proof.
  simpl. destruct (cancel_frame eid resource (Kernel.record_resource event k)) as (E1 & E2 & _).
  split; [by rewrite E1|].
  unfold Kernel.is_identity_cancelled. by rewrite bool_decide_eq_true, E2, lookup_insert_eq.
Qed.

Ltac refused := right; do 3 (split; [done || (simpl; lia)|]); apply exhaust_spec.
Ltac accepted usage_of := left; do 3 (split; [done|]); eapply (accept_spec usage_of); done.

Lemma cpu_charge_spec eid amount k res k' :
  Kernel.try_consume_cpu_ticks eid amount k = Return (res, k') →
  charge_spec ResourceBudget.cpu_ticks ResourceUsage.cpu_ticks amount eid k res k'.
Proof.
  unfold Kernel.try_consume_cpu_ticks, charge_spec.
  destruct (Kernel.identity_table k !! eid) as [i|] eqn:Ei; [|done].
  destruct (IdentityMetadata.budget i) as [b|] eqn:Eb; [|done].
  destruct (Kernel.is_identity_cancelled eid k) eqn:Ec; [intros [= <- <-]; by left|].
  intros E. right. destruct (ResourceBudget.cpu_ticks b) as [l|] eqn:El; simpl.
  - apply bind_Return in E as (x & [-> _]%add_u64_Return & E).
    destruct (N.ltb_spec (Quantity.val l)
      (Quantity.val (ResourceUsage.cpu_ticks (IdentityMetadata.usage i)) + amount));
      injection E as <- <-; [refused|accepted ResourceUsage.cpu_ticks].
  - injection E as <- <-. accepted ResourceUsage.cpu_ticks.
Qed.

Lemma unit_charge_spec {r} resource operation limit_of usage_of consume event eid k res k' :
  (∀ u, Quantity.val (usage_of (consume u)) = saturating_add (Quantity.val (usage_of u)) 1) →
  @Kernel.consume_unit _ _ r resource operation limit_of usage_of consume event eid k
    = Return (res, k') →
  charge_spec limit_of usage_of 1 eid k res k'.
Proof.
  intros Hadd. unfold Kernel.consume_unit, charge_spec.
  destruct (Kernel.identity_table k !! eid) as [i|] eqn:Ei; [|done].
  destruct (IdentityMetadata.budget i) as [b|] eqn:Eb; [|done].
  destruct (Kernel.is_identity_cancelled eid k) eqn:Ec; [intros [= <- <-]; by left|].
  intros E. right. destruct (limit_of b) as [l|] eqn:El; simpl.
  - destruct (N.leb_spec (Quantity.val l) (Quantity.val (usage_of (IdentityMetadata.usage i)))).
    + apply bind_Return in E as (x & _ & [= <- <-]). refused.
    + injection E as <- <-. left. do 3 (split; [done || (simpl; lia)|]). by eapply accept_spec.
  - injection E as <- <-. left. do 3 (split; [done|]). by eapply accept_spec.
Qed.
End charges.

(** The same for the whole operation: an arithmetic overflow is the only way it can
    panic. *)
Definition charge_outcome {r} (limit_of : ResourceBudget.t → option (Quantity.t r))
    (usage_of : ResourceUsage.t → Quantity.t r) (amount : N)
    (eid : ExecutionId.t) (k : Kernel.t) (o : outcome (result unit KernelError.t * Kernel.t))
    : Prop :=
  match o with
  | Return (res, k') => charge_spec limit_of usage_of amount eid k res k'
  | Panic => ∃ i, Kernel.identity_table k !! eid = Some i ∧
      u64_max < Quantity.val (usage_of (IdentityMetadata.usage i)) + amount
  | Diverge => False
  end.

Section outcomes.
Context `{HashOrder} `{UuidFormat}.

Lemma cpu_charge_outcome eid amount k :
  charge_outcome ResourceBudget.cpu_ticks ResourceUsage.cpu_ticks amount eid k
    (Kernel.try_consume_cpu_ticks eid amount k).
Proof.
  destruct (Kernel.try_consume_cpu_ticks eid amount k) as [[res k']| |] eqn:E;
    [by apply cpu_charge_spec| |];
    unfold Kernel.try_consume_cpu_ticks, add_u64, checked_add in E;
    destruct (Kernel.is_identity_cancelled eid k); try done;
    destruct (Kernel.identity_table k !! eid) as [i|] eqn:Ei; try done;
    destruct (IdentityMetadata.budget i) as [b|]; try done;
    destruct (ResourceBudget.cpu_ticks b) as [l|]; try done;
    destruct (N.leb_spec (Quantity.val (ResourceUsage.cpu_ticks (IdentityMetadata.usage i)) + amount)
      u64_max); simpl in E; try done; try by destruct (_ <? _).
  by exists i.
Qed.

Lemma unit_charge_outcome {r} resource operation limit_of usage_of consume event eid k :
  (∀ u, Quantity.val (usage_of (consume u)) = saturating_add (Quantity.val (usage_of u)) 1) →
  charge_outcome limit_of usage_of 1 eid k
    (@Kernel.consume_unit _ _ r resource operation limit_of usage_of consume event eid k).
Proof.
  intros Hadd. destruct (Kernel.consume_unit _ _ _ _ _ _ eid k) as [[res k']| |] eqn:E;
    [by eapply unit_charge_spec| |];
    unfold Kernel.consume_unit, add_u64, checked_add in E;
    destruct (Kernel.is_identity_cancelled eid k); try done;
    destruct (Kernel.identity_table k !! eid) as [i|] eqn:Ei; try done;
    destruct (IdentityMetadata.budget i) as [b|]; try done;
    destruct (limit_of b) as [l|]; try done; destruct (_ <=? _) in E; try done;
    destruct (N.leb_spec (Quantity.val (usage_of (IdentityMetadata.usage i)) + 1) u64_max);
    try done.
  by exists i.
Qed.

(** The account of an identity for one resource: its limit and what it has used. *)
Definition account {r} (limit_of : ResourceBudget.t → option (Quantity.t r))
    (usage_of : ResourceUsage.t → Quantity.t r) (eid : ExecutionId.t) (limit used : N)
    (k : Kernel.t) : Prop :=
  ∃ i b, Kernel.identity_table k !! eid = Some i ∧ IdentityMetadata.budget i = Some b ∧
    limit_of b = Some (Quantity.new limit) ∧
    Quantity.val (usage_of (IdentityMetadata.usage i)) = used.

(** A charge of one unit returns, and an accepted one moves the account by one and never
    past the limit.  This is the lemma that the services behind a budget use. *)
Lemma account_charge {r} limit_of usage_of eid limit used k o :
  @charge_outcome r limit_of usage_of 1 eid k o →
  account limit_of usage_of eid limit used k → used ≤ limit → limit < u64_max →
  ∃ res k', o = Return (res, k') ∧
    account limit_of usage_of eid limit (used + if is_ok res then 1 else 0) k' ∧
    (used + if is_ok res then 1 else 0) ≤ limit.
Proof.
  intros Ho (i & b & Hi & Hb & Hl & Hu) Hle Hmax.
  destruct o as [[res k']| |]; simpl in Ho; [|destruct Ho as (i' & Hi' & ?)|done].
  2:{ rewrite Hi in Hi'. injection Hi' as <-. lia. }
  exists res, k'. split; [done|]. unfold charge_spec in Ho. rewrite Hi, Hb, Hl, Hu in Ho.
  unfold is_err in Ho. simpl in Ho.
  destruct Ho as [(_ & He & ->)|[(_ & Hr & -> & (i' & Hi' & Hb' & Hu') & _)|(_ & _ & He & Ht & _)]].
  - destruct (is_ok res); [done|]. rewrite N.add_0_r. split; [by exists i, b|done].
  - split; [|done]. exists i', b. rewrite Hu'. unfold saturating_add. simpl.
    split_and!; [done..|lia].
  - destruct (is_ok res); [done|]. rewrite N.add_0_r. split; [|done].
    exists i, b. by rewrite Ht.
Qed.

Lemma consume_cancelled {r} resource operation limit_of usage_of consume event eid k :
  Kernel.is_identity_cancelled eid k = true →
  @Kernel.consume_unit _ _ r resource operation limit_of usage_of consume event eid k
    = Return (Err (Kernel.cancelled_error resource operation eid), k).
Proof. intros Hc. unfold Kernel.consume_unit. by rewrite Hc. Qed.

Lemma send_charge_refused c m e id k :
  MessageEnvelope.source m = Some id → Kernel.task_to_identity k !! id = Some e →
  Kernel.is_identity_cancelled e k = true →
  ∃ err, Kernel.send_message c m k = Return (Err err, k).
Proof.
  intros Hs Hi Hc. unfold Kernel.send_message.
  destruct (Kernel.check_send_access c m k); [|by eexists].
  destruct (Kernel.check_schema m k); [|by eexists].
  unfold Kernel.charge_source, Kernel.try_consume_message. rewrite Hs, Hi, consume_cancelled by done.
  by eexists.
Qed.

Lemma receive_charge_refused c timeout e id k :
  Kernel.current_receive_task k = Some id → Kernel.task_to_identity k !! id = Some e →
  Kernel.is_identity_cancelled e k = true →
  ∃ err, Kernel.receive_message c timeout k = Return (Err err, k).
Proof.
  intros Hs Hi Hc. unfold Kernel.receive_message.
  destruct (Kernel.check_receive_access c k); [|by eexists].
  unfold Kernel.charge_receiver, Kernel.try_consume_message.
  rewrite Hs, Hi, consume_cancelled by done. by eexists.
Qed.
End outcomes.

(** The tables after a task was installed. *)
Lemma install_tables `{DefaultHasher} id sp desc meta k k' :
  Kernel.install_task id sp desc meta k = Return k' →
  Kernel.identity_table k'
    = <[IdentityMetadata.execution_id meta := meta]> (Kernel.identity_table k) ∧
  Kernel.task_to_identity k'
    = <[id := IdentityMetadata.execution_id meta]> (Kernel.task_to_identity k).
Proof.
  unfold Kernel.install_task. intros (k1 & H1 & ([cap asm] & _ & [= <-])%bind_Return)%bind_Return.
  simpl in *. destruct (Kernel.smp k); simpl in H1.
  - by apply bind_Return in H1 as (sc & _ & [= <-]).
  - by injection H1 as <-.
Qed.

Module BudgetSafety.
Section theorems.
Context `{UuidFormat} `{DefaultHasher}.

(** C4: budgets are hard limits, as long as every identity registered with
    [create_identity] starts within its own budget, which the kernel does not check
    ([overdrawn_identity_is_registered]): in every state reachable by kernel calls under that
    condition, the usage of every identity with a budget is within all six limits of it
    (so [ResourceUsage::exceeds] finds nothing). *)
Theorem usage_never_exceeds_budget k0 k e i b :
  initial k0 → kreach registers_within k0 k →
  Kernel.identity_table k !! e = Some i → IdentityMetadata.budget i = Some b →
  ResourceUsage.exceeds (IdentityMetadata.usage i) b = None.
Proof.
  intros Hi Hr He Hb. apply ResourceSpec.exceeds_none. exact (reach_budget k0 k Hi Hr e i b He Hb).
Qed.

(** The outcome of every charge, for all five chargeable resources: a cancelled
    identity is refused and nothing changes; a charge that fits is accepted and adds
    exactly its amount to that one counter of that one identity; a charge that does
    not fit is refused, leaves every counter alone and cancels the identity; the only
    panic is the overflow of the 64-bit sum. *)
Theorem charges_follow_budget `{HashOrder} eid k :
  (∀ amount, charge_outcome ResourceBudget.cpu_ticks ResourceUsage.cpu_ticks amount eid k
     (Kernel.try_consume_cpu_ticks eid amount k)) ∧
  (∀ stage, charge_outcome ResourceBudget.pipeline_stages ResourceUsage.pipeline_stages 1 eid k
     (Kernel.try_consume_pipeline_stage eid stage k)) ∧
  (∀ o, charge_outcome ResourceBudget.packet_count ResourceUsage.packet_count 1 eid k
     (Kernel.try_consume_packet eid o k)) ∧
  (∀ o, charge_outcome ResourceBudget.storage_ops ResourceUsage.storage_ops 1 eid k
     (Kernel.try_consume_storage_op eid o k)) ∧
  (∀ id o, match Kernel.task_to_identity k !! id with
           | Some e => charge_outcome ResourceBudget.message_count ResourceUsage.message_count 1 e k
                         (Kernel.try_consume_message id o k)
           | None => Kernel.try_consume_message id o k = Return (Ok tt, k)
           end).
Proof.
  split_and!; intros.
  - apply cpu_charge_outcome.
  - by apply unit_charge_outcome.
  - by apply unit_charge_outcome.
  - by apply unit_charge_outcome.
  - unfold Kernel.try_consume_message. destruct (Kernel.task_to_identity k !! id); [|done].
    by apply unit_charge_outcome.
Qed.

(** C10: cancellation is final: once an identity has been cancelled, in every later
    state each charge to it of processor time, a pipeline stage, a packet or a storage
    operation, and each send or receive by a task of it, is refused and leaves the
    kernel exactly as it was.  (The charge of memory is the exception: it does not look
    at cancellation, see [cancelled_identity_still_allocates].) *)
Theorem cancelled_identity_is_refused_forever `{HashOrder} e k k' :
  Kernel.is_identity_cancelled e k = true → kreach any_call k k' →
  let refused m := ∃ err : KernelError.t, m = Return (Err (T := unit) err, k') in
  Kernel.is_identity_cancelled e k' = true ∧
  (∀ n, refused (Kernel.try_consume_cpu_ticks e n k')) ∧
  (∀ s, refused (Kernel.try_consume_pipeline_stage e s k')) ∧
  (∀ o, refused (Kernel.try_consume_packet e o k')) ∧
  (∀ o, refused (Kernel.try_consume_storage_op e o k')) ∧
  (∀ id, Kernel.task_to_identity k' !! id = Some e →
     (∀ c m, MessageEnvelope.source m = Some id → refused (Kernel.send_message c m k')) ∧
     (∀ c t, Kernel.current_receive_task k' = Some id →
        ∃ err, Kernel.receive_message c t k' = Return (Err err, k'))).
Proof.
  intros Hc Hr. pose proof (reach_cancelled e k k' Hc Hr) as Hc'. intros refused.
  split_and!; [done|..]; unfold refused.
  - intros n. unfold Kernel.try_consume_cpu_ticks. rewrite Hc'. by eexists.
  - intros s. eexists. by apply consume_cancelled.
  - intros o. eexists. by apply consume_cancelled.
  - intros o. eexists. by apply consume_cancelled.
  - intros id Hid. split; intros; [by eapply send_charge_refused|by eapply receive_charge_refused].
Qed.

(** Running out of processor time stops the task: when the charge of a task's
    identity does not fit its budget, the task is in state [Cancelled] afterwards and
    is no longer in the run queue, so the scheduler does not run it again. *)
Theorem exhaustion_stops_task `{HashOrder} k id eid amount err k' :
  Kernel.smp k = None → Kernel.is_identity_cancelled eid k = false →
  Kernel.task_to_identity k !! id = Some eid →
  (∀ id', Kernel.task_to_identity k !! id' = Some eid → id' = id) →
  is_Some (Scheduler.tasks (Kernel.scheduler k) !! id) →
  Kernel.try_consume_cpu_ticks eid amount k = Return (Err err, k') →
  Scheduler.task_state id (Kernel.scheduler k') = Some TaskState.Cancelled ∧
  id ∉ Scheduler.run_queue (Kernel.scheduler k') ∧
  Scheduler.current_task (Kernel.scheduler k') ≠ Some id.
Proof.
  intros Hsmp Hc Hid Huniq Ht E.
  assert (Kernel.scheduler k' = Scheduler.cancel_task id (Kernel.scheduler k)) as ->.
  { unfold Kernel.try_consume_cpu_ticks in E. rewrite Hc in E.
    destruct (Kernel.identity_table k !! eid) as [i|]; [|done].
    destruct (IdentityMetadata.budget i) as [b|]; [|done].
    destruct (ResourceBudget.cpu_ticks b) as [l|]; [|done].
    apply bind_Return in E as (x & _ & E). destruct (_ <? _); [|done].
    injection E as _ <-.
    exact (cancel_stops_task eid _ id (Kernel.record_resource _ k) Hsmp Hid Huniq Ht). }
  apply cancel_task_spec. done.
Qed.

(** A spawned child is never limited, whatever limits its parent has: on success the
    child's identity is in the table with no budget and the given parent and creator, and
    the refusal for a child budget that exceeds the parent's is never returned. *)
Theorem spawned_child_is_unlimited d desc kind domain parent creator k :
  match Kernel.spawn_task_with_identity d desc kind domain parent creator k with
  | Return (Ok (handle, eid), k') =>
      ∃ i, Kernel.identity_table k' !! eid = Some i ∧ IdentityMetadata.budget i = None ∧
           IdentityMetadata.parent_id i = parent ∧ IdentityMetadata.creator_id i = creator ∧
           Kernel.task_to_identity k' !! TaskHandle.task_id handle = Some eid
  | Return (Err e, _) =>
      e ≠ KernelError.InsufficientAuthority
            "Budget inheritance violation: child budget exceeds parent"
  | _ => True
  end.
Proof.
  destruct (Kernel.spawn_task_with_identity d desc kind domain parent creator k) as [[r k']| |] eqn:E;
    [|done..].
  unfold Kernel.spawn_task_with_identity in E.
  match type of E with (if negb ?b then _ else _) = _ => assert (b = true) as Hb end.
  { destruct parent as [p|]; [|done]. by destruct (Kernel.identity_table k !! p). }
  rewrite Hb in E. cbn [negb] in E.
  match type of E with match Kernel.check_spawn_policy _ ?m _ with _ => _ end = _ =>
    set (meta := m) in *; assert (IdentityMetadata.budget meta = None ∧
      IdentityMetadata.parent_id meta = parent ∧ IdentityMetadata.creator_id meta = creator)
      as Hmeta by (unfold meta; by destruct parent, creator) end.
  clearbody meta. destruct (Kernel.check_spawn_policy creator meta k) as [[u|e] k1] eqn:Ep.
  - apply bind_Return in E as (k2 & E2 & [= <- <-]). simpl.
    apply install_tables in E2 as [E3 E4]. exists meta.
    rewrite E3, E4, !lookup_insert_eq. naive_solver.
  - injection E as <- _. unfold Kernel.check_spawn_policy in Ep.
    destruct creator as [cr|]; [|done]. destruct (Kernel.identity_table k !! cr); [|done].
    destruct (Kernel.evaluate_policy _ _ k) as [[| |] kp]; [done|..];
      injection Ep as <- _; discriminate.
Qed.
End theorems.

#[local] Existing Instance sample_format.
#[local] Existing Instance sample_hasher.

(** A task of an identity with five processor ticks and one message. *)
Definition tight_budget : ResourceBudget.t :=
  ResourceBudget.mk (Some (Quantity.new 5)) None (Some (Quantity.new 1)) None None None.
Definition budgeted : IdentityMetadata.t :=
  IdentityMetadata.with_budget tight_budget
    (IdentityMetadata.new (ExecutionId.mk 101) IdentityKind.Component TrustDomain.user "a" 0).
(** Task 1 has the identity 101; registering it again sets its budget. *)
Definition tight_history : list KOp.t :=
  two_tasks ++ [KOp.CreateIdentity budgeted; KOp.ConsumeCpu (ExecutionId.mk 101) 4].
Definition tight_state : Kernel.t := sample_state tight_history.

Lemma tight_reach : kreach registers_within sample_kernel tight_state.
Proof.
  apply krun_default_reach. intros o x Ho m b.
  repeat (apply elem_of_cons in Ho as [->|Ho]; [try discriminate|]);
    [|by apply not_elem_of_nil in Ho].
  intros [= <-] [= <-]. apply ResourceSpec.within_zero.
Qed.

Lemma usage_never_exceeds_budget_witness :
  ∃ i, Kernel.identity_table tight_state !! ExecutionId.mk 101 = Some i ∧
       Quantity.val (ResourceUsage.cpu_ticks (IdentityMetadata.usage i)) = 4 ∧
       ResourceUsage.exceeds (IdentityMetadata.usage i) tight_budget = None.
Proof.
  destruct (Kernel.identity_table tight_state !! ExecutionId.mk 101) as [i|] eqn:E;
    [|vm_compute in E; done].
  exists i. assert (IdentityMetadata.budget i = Some tight_budget ∧
    Quantity.val (ResourceUsage.cpu_ticks (IdentityMetadata.usage i)) = 4) as [Hb Hu]
    by (vm_compute in E; injection E as <-; done).
  split_and!; [done|done|].
  exact (usage_never_exceeds_budget sample_kernel tight_state (ExecutionId.mk 101) i tight_budget
    sample_initial tight_reach E Hb).
Defined.

(** Two more ticks do not fit: the identity is cancelled. *)
Definition spent_state : Kernel.t :=
  default tight_state (krun [KOp.ConsumeCpu (ExecutionId.mk 101) 2] tight_state).

Lemma cancelled_identity_is_refused_forever_witness :
  let later := default spent_state (krun [KOp.AdvanceTime (Duration.mk 9000)] spent_state) in
  Kernel.is_identity_cancelled (ExecutionId.mk 101) spent_state = true ∧
  ∃ err, @Kernel.try_consume_cpu_ticks canonical_order _ (ExecutionId.mk 101) 1 later
           = Return (Err err, later).
Proof.
  intros later. assert (Kernel.is_identity_cancelled (ExecutionId.mk 101) spent_state = true) as Hc
    by by vm_compute.
  split; [done|].
  apply (@cancelled_identity_is_refused_forever _ _ canonical_order (ExecutionId.mk 101) spent_state
    later Hc). by apply krun_default_reach.
Defined.

Lemma exhaustion_stops_task_witness :
  ∃ err k', @Kernel.try_consume_cpu_ticks canonical_order _ (ExecutionId.mk 101) 2 tight_state
              = Return (Err err, k') ∧
            Scheduler.task_state (TaskId.mk 1) (Kernel.scheduler k') = Some TaskState.Cancelled.
Proof.
  destruct (@Kernel.try_consume_cpu_ticks canonical_order _ (ExecutionId.mk 101) 2 tight_state)
    as [[[u|err] k']| |] eqn:E; [vm_compute in E; discriminate| |vm_compute in E; discriminate..].
  exists err, k'. split; [done|].
  apply (@exhaustion_stops_task _ canonical_order tight_state (TaskId.mk 1) (ExecutionId.mk 101) 2
    err k'); [by vm_compute|by vm_compute|by vm_compute| |by vm_compute; eexists|done].
  intros id'. rewrite <- elem_of_map_to_list. vm_compute.
  inversion 1 as [|? ? ? Hid]. apply list_elem_of_singleton in Hid. congruence.
Defined.

(** A task whose identity may use ten units of memory. *)
Definition memory_state : Kernel.t :=
  sample_state (two_tasks ++ [KOp.CreateIdentity (IdentityMetadata.with_budget
    (ResourceBudget.unlimited <| ResourceBudget.memory_units := Some (Quantity.new 10) |>)
    (IdentityMetadata.new (ExecutionId.mk 101) IdentityKind.Component TrustDomain.user "a" 0))]).
Definition memory_used (e : ExecutionId.t) (k : Kernel.t) : option N :=
  (λ i, Quantity.val (ResourceUsage.memory_units (IdentityMetadata.usage i)))
    <$> Kernel.identity_table k !! e.

(** Registering an identity checks nothing: one whose usage is over its budget is accepted. *)
Theorem overdrawn_identity_is_registered :
  let overdrawn := budgeted <| IdentityMetadata.usage := ResourceUsage.zero
                     <| ResourceUsage.cpu_ticks := Quantity.new 6 |> |> in
  let k := (Kernel.create_identity overdrawn sample_kernel).2 in
  Kernel.identity_table k !! ExecutionId.mk 101 = Some overdrawn ∧
  is_Some (ResourceUsage.exceeds (IdentityMetadata.usage overdrawn) tight_budget).
Proof. vm_compute. split; [done|by eexists]. Qed.

(** The same identity with five ticks as well, which it has overdrawn: it is cancelled. *)
Definition cancelled_state : Kernel.t :=
  sample_state (two_tasks ++ [KOp.CreateIdentity (IdentityMetadata.with_budget
    (tight_budget <| ResourceBudget.memory_units := Some (Quantity.new 10) |>)
    (IdentityMetadata.new (ExecutionId.mk 101) IdentityKind.Component TrustDomain.user "a" 0));
    KOp.ConsumeCpu (ExecutionId.mk 101) 9]).
(** A cancelled identity still allocates: both ways of allocating memory charge two more pages
    to it and hand out the region. *)
Theorem cancelled_identity_still_allocates :
  let e := ExecutionId.mk 101 in
  let allocated (m : outcome (result MemoryRegionCap.t MemoryError.t * Kernel.t)) :=
    match m with
    | Return (Ok _, k) => Kernel.is_identity_cancelled e k = true ∧ memory_used e k = Some 2
    | _ => False
    end in
  match Kernel.create_address_space (AddressSpaceId.mk 77) e cancelled_state with
  | Return (Ok cap, k) =>
      Kernel.is_identity_cancelled e k = true ∧ memory_used e k = Some 0 ∧
      allocated (Kernel.allocate_region (MemoryRegionId.mk 8) cap 8192 MemoryPerms.read_only
                   MemoryBacking.Anonymous e k) ∧
      allocated (Kernel.allocate_region_op (MemoryRegionId.mk 8) cap 8192 MemoryPerms.read_only
                   MemoryBacking.Anonymous e k)
  | _ => False
  end.
Proof. by vm_compute. Qed.

(** A refused allocation is still charged: allocating two pages in an address space
    that does not exist fails, and the identity's memory usage has grown by two units all
    the same, both through [allocate_region] and through the system call. *)
Theorem refused_allocation_is_charged :
  let cap := AddressSpaceCap.mk (AddressSpaceId.mk 999) 1 in
  let charged (m : outcome (result MemoryRegionCap.t MemoryError.t * Kernel.t)) :=
    match m with
    | Return (Err _, k) => memory_used (ExecutionId.mk 101) k = Some 2
    | _ => False
    end in
  memory_used (ExecutionId.mk 101) memory_state = Some 0 ∧
  charged (Kernel.allocate_region (MemoryRegionId.mk 5) cap 8192 MemoryPerms.read_write
             MemoryBacking.Anonymous (ExecutionId.mk 101) memory_state) ∧
  charged (Kernel.allocate_region_op (MemoryRegionId.mk 5) cap 8192 MemoryPerms.read_write
             MemoryBacking.Anonymous (ExecutionId.mk 101) memory_state).
Proof. vm_compute. split_and!; reflexivity. Qed.
End BudgetSafety.
