(* ===== verification/MsgProps.v ===== *)
(** * Message passing of the kernel

    Theorems about [SimulatedKernel::send_message], [receive_message] and
    [process_delayed_messages]: refused messages have no effect, a channel is a
    reliable bounded FIFO over every history of calls when no faults are injected,
    and delayed messages are neither lost nor duplicated. *)

From S2P Require Import Prelude CoreTypes Debug Resources Identity Ipc Policy Queue AuditLogs.
From S2P Require Import Faults Sched SchedProps Smp AddrSpace SyscallGate Kernel KernelSpec.
From S2P Require Import KernelProps BudgetProps.
Open Scope string_scope.
Open Scope list_scope.
Open Scope N_scope.

(** ** Operations that do not touch messages *)

(** The parts of the state that message passing depends on; while no message is
    delayed, time does not change them. *)
Definition same_messages (k k' : Kernel.t) : Prop :=
  Kernel.fault_injector k' = Kernel.fault_injector k ∧
  (Kernel.delayed_messages k = [] →
   Kernel.delayed_messages k' = [] ∧ Kernel.channels k' = Kernel.channels k).

#[export] Instance same_messages_preorder : PreOrder same_messages.
Proof.
  split; [by split|]. intros k1 k2 k3 [F1 M1] [F2 M2]. split; [congruence|].
  intros H1. destruct (M1 H1) as [H2 E2]. destruct (M2 H2) as [H3 E3]. split; [done|congruence].
Qed.

Lemma same_messages_intro k k' :
  Kernel.fault_injector k' = Kernel.fault_injector k →
  Kernel.delayed_messages k' = Kernel.delayed_messages k → Kernel.channels k' = Kernel.channels k →
  same_messages k k'.
Proof. intros E1 E2 E3. split; [done|]. by rewrite E2, E3. Qed.

Lemma cancel_same_messages `{HashOrder} eid reason event k :
  same_messages k (Kernel.cancel_identity eid reason (Kernel.record_resource event k)).
Proof.
  destruct (cancel_frame eid reason (Kernel.record_resource event k))
    as (_ & _ & E1 & E2 & E3 & _). by apply same_messages_intro.
Qed.

Section frames.
Context `{HashOrder} `{UuidFormat}.

Lemma cpu_same_messages eid n k r k' :
  Kernel.try_consume_cpu_ticks eid n k = Return (r, k') → same_messages k k'.
Proof.
  unfold Kernel.try_consume_cpu_ticks.
  destruct (Kernel.is_identity_cancelled eid k); [by intros [= _ <-]|].
  destruct (Kernel.identity_table k !! eid) as [i|]; [|by intros [= _ <-]].
  destruct (IdentityMetadata.budget i) as [b|]; [|by intros [= _ <-]].
  destruct (ResourceBudget.cpu_ticks b); [|by intros [= _ <-]].
  intros (x & _ & Hx)%bind_Return. destruct (_ <? _); injection Hx as _ <-;
    [apply cancel_same_messages|by apply same_messages_intro].
Qed.

Lemma unit_same_messages {r} resource operation limit_of usage_of consume event eid k x k' :
  @Kernel.consume_unit _ _ r resource operation limit_of usage_of consume event eid k
    = Return (x, k') → same_messages k k'.
Proof.
  unfold Kernel.consume_unit.
  destruct (Kernel.is_identity_cancelled eid k); [by intros [= _ <-]|].
  destruct (Kernel.identity_table k !! eid) as [i|]; [|by intros [= _ <-]].
  destruct (IdentityMetadata.budget i) as [b|]; [|by intros [= _ <-]].
  destruct (limit_of b); [|by intros [= _ <-]]. destruct (_ <=? _).
  - intros (a & _ & [= _ <-])%bind_Return. apply cancel_same_messages.
  - by intros [= _ <-].
Qed.

Lemma message_same_messages id o k x k' :
  Kernel.try_consume_message id o k = Return (x, k') → same_messages k k'.
Proof.
  unfold Kernel.try_consume_message. destruct (Kernel.task_to_identity k !! id);
    [apply unit_same_messages|by intros [= _ <-]].
Qed.

Lemma time_same_messages d k k' : Kernel.advance_time d k = Return k' → same_messages k k'.
Proof.
  intros (n & t & lg & c & dm & sc & _ & _ & _ & Hr & _ & ->)%advance_time_inv.
  split; [done|]. simpl. intros Hd. rewrite Hd in Hr. by injection Hr as -> ->.
Qed.

#[export] Instance messages_steady : Steady same_messages.
Proof.
  split; [apply _|apply time_same_messages|apply cpu_same_messages|..];
    intros; by apply same_messages_intro.
Qed.

Lemma charge_source_same_messages m k x k' :
  Kernel.charge_source m k = Return (x, k') → same_messages k k'.
Proof.
  unfold Kernel.charge_source. destruct (MessageEnvelope.source m);
    [apply message_same_messages|by intros [= _ <-]].
Qed.

Lemma charge_receiver_same_messages k x k' :
  Kernel.charge_receiver k = Return (x, k') → same_messages k k'.
Proof.
  unfold Kernel.charge_receiver. destruct (Kernel.current_receive_task k);
    [apply message_same_messages|by intros [= _ <-]].
Qed.
End frames.

(** ** Sends and receives without faults *)
Definition contents (c : ChannelId.t) (k : Kernel.t) : option (list MessageEnvelope.t) :=
  (λ ch, MessageQueue.messages (Channel.queue ch)) <$> Kernel.channels k !! c.

Definition fault_free (k : Kernel.t) : Prop :=
  Kernel.fault_injector k = None ∧ Kernel.delayed_messages k = [].

Lemma same_messages_fault_free k k' :
  fault_free k → same_messages k k' →
  fault_free k' ∧ Kernel.channels k' = Kernel.channels k.
Proof.
  intros [F D] [F' M]. destruct (M D) as [D' E]. split; [split; congruence|done].
Qed.

Section effects.
Context `{HashOrder} `{UuidFormat}.

Lemma deliver_contents c m k x k' :
  fault_free k → Kernel.deliver c m k = Return (x, k') →
  fault_free k' ∧
  (∀ c', c' ≠ c → contents c' k' = contents c' k) ∧
  contents c k' = (λ l, l ++ (if is_ok x then [m] else [])) <$> contents c k ∧
  (is_ok x = true → is_Some (contents c k)).
Proof.
  intros [F D]. unfold Kernel.deliver, contents.
  destruct (Kernel.channels k !! c) as [ch|] eqn:Ech;
    [|by intros [= <- <-]; rewrite Ech; split_and!].
  destruct (MessageQueue.push m (Channel.queue ch)) as [[u|] q] eqn:Ep.
  2: { intros [= <- <-]. rewrite Ech. simpl. rewrite app_nil_r. by split_and!. }
  rewrite F. simpl. intros [= <- <-]. simpl. split_and!.
  - by split.
  - intros c' Hc. by rewrite lookup_insert_ne.
  - rewrite lookup_insert_eq. simpl. f_equal.
    unfold MessageQueue.push in Ep. destruct (_ <=? _); [done|]. by injection Ep as _ <-.
  - eauto.
Qed.

Lemma send_contents c m k x k' :
  fault_free k → Kernel.send_message c m k = Return (x, k') →
  fault_free k' ∧
  (∀ c', c' ≠ c → contents c' k' = contents c' k) ∧
  contents c k' = (λ l, l ++ (if is_ok x then [m] else [])) <$> contents c k ∧
  (is_ok x = true → is_Some (contents c k)).
Proof.
  intros Hf. assert (∀ l : option (list MessageEnvelope.t), (λ l, l ++ []) <$> l = l) as Hnil
    by (intros [l|]; simpl; [by rewrite app_nil_r|done]).
  unfold Kernel.send_message.
  destruct (Kernel.check_send_access c m k); [|by intros [= <- <-]; simpl; rewrite Hnil].
  destruct (Kernel.check_schema m k); [|by intros [= <- <-]; simpl; rewrite Hnil].
  intros [(u & k1 & H1 & H2)|(e & H1 & ->)]%try_bind_Return;
    apply charge_source_same_messages in H1;
    destruct (same_messages_fault_free _ _ Hf H1) as [Hf1 E1].
  - apply bind_Return in H2 as ([cut k2] & H2 & H3). unfold Kernel.inject_send_faults in H2.
    rewrite (proj1 Hf1) in H2. injection H2 as <- <-. simpl in H3.
    apply (deliver_contents c m k1) in H3; [|done]. unfold contents in *. by rewrite E1 in H3.
  - simpl. unfold contents. by rewrite E1, Hnil.
Qed.

Lemma receive_contents c timeout k x k' :
  fault_free k → Kernel.receive_message c timeout k = Return (x, k') →
  fault_free k' ∧
  (∀ c', c' ≠ c → contents c' k' = contents c' k) ∧
  match x with
  | Ok m => ∃ l, contents c k = Some (m :: l) ∧ contents c k' = Some l
  | Err _ => contents c k' = contents c k
  end.
Proof.
  intros Hf. unfold Kernel.receive_message.
  destruct (Kernel.check_receive_access c k); [|by intros [= <- <-]].
  intros [(u & k1 & H1 & H2)|(e & H1 & ->)]%try_bind_Return;
    apply charge_receiver_same_messages in H1;
    destruct (same_messages_fault_free _ _ Hf H1) as [Hf1 E1];
    unfold contents; rewrite <- E1; [|done].
  pose proof Hf1 as [F1 D1]. rewrite F1 in H2. unfold Kernel.take_message in H2.
  destruct (Kernel.channels k1 !! c) as [ch|] eqn:Ech; [|by injection H2 as <- <-; rewrite Ech].
  unfold MessageQueue.pop in H2.
  destruct (MessageQueue.messages (Channel.queue ch)) as [|m l] eqn:El.
  { injection H2 as <- <-. by rewrite Ech. }
  simpl in H2. rewrite F1 in H2. injection H2 as <- <-. simpl. split_and!.
  - by split.
  - intros c' Hc. by rewrite lookup_insert_ne.
  - exists l. rewrite lookup_insert_eq. simpl. by rewrite El.
Qed.
End effects.

(** Every other operation leaves all channels alone. *)
Definition passes_messages (o : KOp.t) : bool :=
  match o with KOp.Send _ _ | KOp.Recv _ _ | KOp.CreateChannel _ => true | _ => false end.

Lemma delegate_same_messages c a b k : same_messages k (Kernel.delegate_capability c a b k).2.
Proof.
  unfold Kernel.delegate_capability, Kernel.transfer_capability, Kernel.evaluate_policy.
  repeat (case_match; simplify_eq/=; try by apply same_messages_intro).
Qed.

Lemma terminate_same_messages `{HashOrder} drawn id reason k :
  same_messages k (Kernel.terminate_task_with_reason drawn id reason k).
Proof.
  unfold Kernel.terminate_task_with_reason.
  set (kr := (Kernel.retire_identity drawn id reason k) <| Kernel.tasks ::= delete id |>).
  transitivity kr.
  { unfold kr, Kernel.retire_identity.
    by destruct (Kernel.task_to_identity k !! id); apply same_messages_intro. }
  destruct (invalidate_frame id kr) as (t & lg & ->).
  by destruct (Kernel.smp _); apply same_messages_intro.
Qed.

Lemma install_same_messages `{DefaultHasher} id sp desc meta k k' :
  Kernel.install_task id sp desc meta k = Return k' → same_messages k k'.
Proof.
  unfold Kernel.install_task. intros (k1 & H1 & ([cap asm] & _ & [= <-])%bind_Return)%bind_Return.
  transitivity k1; [|by apply same_messages_intro].
  simpl in H1. destruct (Kernel.smp k); simpl in H1.
  - apply bind_Return in H1 as (sc & _ & [= <-]). by apply same_messages_intro.
  - injection H1 as <-. by apply same_messages_intro.
Qed.

Lemma spawn_identity_same_messages `{DefaultHasher} d desc kind domain parent creator k x k' :
  Kernel.spawn_task_with_identity d desc kind domain parent creator k = Return (x, k') →
  same_messages k k'.
Proof.
  unfold Kernel.spawn_task_with_identity. destruct (negb _); [by intros [= _ <-]|].
  match goal with |- context [Kernel.check_spawn_policy ?c ?m k] =>
    assert (same_messages k (Kernel.check_spawn_policy c m k).2) as Hp end.
  { unfold Kernel.check_spawn_policy, Kernel.evaluate_policy.
    repeat (case_match; simplify_eq/=; try by apply same_messages_intro). }
  destruct (Kernel.check_spawn_policy _ _ k) as [[u|] k1]; simpl in Hp; [|by intros [= _ <-]].
  intros (k2 & H2 & [= _ <-])%bind_Return. transitivity k1; [done|].
  by eapply install_same_messages.
Qed.

Lemma charge_memory_same_messages size eid k : same_messages k (Kernel.charge_memory size eid k).2.
Proof.
  unfold Kernel.charge_memory. destruct (Kernel.memory_limit eid k) as [[i l]|]; [|done].
  by destruct (negb _); apply same_messages_intro.
Qed.

Lemma allocate_in_space_same_messages `{DefaultHasher} cap r eid k x k' :
  Kernel.allocate_in_space cap r eid k = Return (x, k') → same_messages k k'.
Proof.
  unfold Kernel.allocate_in_space. intros ([y asm] & _ & [= _ <-])%bind_Return.
  by apply same_messages_intro.
Qed.

Lemma allocate_same_messages `{DefaultHasher} rid cap size perms backing eid k x k' :
  Kernel.allocate_region rid cap size perms backing eid k = Return (x, k') → same_messages k k'.
Proof.
  unfold Kernel.allocate_region. destruct (size =? 0); [by intros [= _ <-]|].
  pose proof (charge_memory_same_messages size eid k) as Hc.
  destruct (Kernel.charge_memory size eid k) as [[u|] k1]; [|by intros [= _ <-]].
  intros Ha. transitivity k1; [done|]. by eapply allocate_in_space_same_messages.
Qed.

Lemma allocate_op_same_messages `{DefaultHasher} rid cap size perms backing eid k x k' :
  Kernel.allocate_region_op rid cap size perms backing eid k = Return (x, k') →
  same_messages k k'.
Proof.
  unfold Kernel.allocate_region_op.
  assert (∀ y k1, Kernel.charge_memory_op size eid k = Return (y, k1) → same_messages k k1) as Hc.
  { intros y k1. unfold Kernel.charge_memory_op.
    destruct (Kernel.memory_limit eid k) as [[i l]|]; [|by intros [= _ <-]].
    intros (a & _ & Ha)%bind_Return. destruct (_ <? _); injection Ha as _ <-;
      by apply same_messages_intro. }
  intros [(u & k1 & H1 & H2)|(e & H1 & ->)]%try_bind_Return; [|by eapply Hc].
  transitivity k1; [by eapply Hc|by eapply allocate_in_space_same_messages].
Qed.

Lemma exec_same_messages `{HashOrder} `{UuidFormat} `{DefaultHasher} o k k' :
  passes_messages o = false → KOp.exec o k = Return k' → same_messages k k'.
Proof.
  intros Ho He. destruct o; try discriminate Ho; simpl in He;
    try (apply after_inv in He as [x He]); try (injection He as <-);
    try by apply same_messages_intro.
  - by eapply time_same_messages.
  - by eapply (sleep_steady same_messages).
  - by eapply (run_for_ticks_steady same_messages).
  - by eapply (run_for_steps_steady same_messages).
  - by eapply (run_until_idle_steady same_messages).
  - unfold Kernel.grant_capability. by destruct (negb _); apply same_messages_intro.
  - unfold Kernel.grant_capability_with_lease. by destruct (negb _); apply same_messages_intro.
  - unfold Kernel.revoke_capability. destruct (Kernel.checked_cap _ _ _ _); [|done].
    by destruct (Kernel.capability_table k !! cap); apply same_messages_intro.
  - unfold Kernel.drop_capability. destruct (Kernel.checked_cap _ _ _ _); [|done].
    by destruct (Kernel.capability_table k !! cap); apply same_messages_intro.
  - apply delegate_same_messages.
  - unfold Kernel.spawn_task in He. apply bind_Return in He as (k1 & H2 & [= _ <-]).
    by eapply install_same_messages.
  - by eapply spawn_identity_same_messages.
  - apply terminate_same_messages.
  - by eapply cpu_same_messages.
  - by eapply unit_same_messages.
  - by eapply unit_same_messages.
  - by eapply unit_same_messages.
  - unfold Kernel.register_service. by destruct (bool_decide _); apply same_messages_intro.
  - unfold Kernel.register_service_with_schema, Kernel.register_service.
    by destruct (bool_decide _); apply same_messages_intro.
  - unfold Kernel.revoke_channel_access. destruct (Kernel.channel_access k !! c); [|done].
    by destruct (ChannelAccess.is_empty _); apply same_messages_intro.
  - unfold Kernel.create_address_space in He.
    apply bind_Return in He as ([cap asm] & _ & [= _ <-]). by apply same_messages_intro.
  - by eapply allocate_same_messages.
  - by eapply allocate_op_same_messages.
  - unfold Kernel.access_region. destruct (AddressSpaceManager.access_region _ _ _ _ _).
    by apply same_messages_intro.
  - unfold Kernel.activate_address_space. destruct (AddressSpaceManager.activate_space _ _ _ _).
    by apply same_messages_intro.
Qed.

(** ** Histories with their messages *)
Section history.
Context `{UuidFormat} `{DefaultHasher} (c : ChannelId.t).

(** The message an operation adds to, or takes from, the channel [c]. *)
Definition sends `{HashOrder} (o : KOp.t) (k : Kernel.t) : list MessageEnvelope.t :=
  match o with
  | KOp.Send c' m =>
      match Kernel.send_message c' m k with
      | Return (Ok _, _) => if decide (c' = c) then [m] else []
      | _ => []
      end
  | _ => []
  end.
Definition receives `{HashOrder} (o : KOp.t) (k : Kernel.t) : list MessageEnvelope.t :=
  match o with
  | KOp.Recv c' timeout =>
      match Kernel.receive_message c' timeout k with
      | Return (Ok m, _) => if decide (c' = c) then [m] else []
      | _ => []
      end
  | _ => []
  end.

(** [history sent received k k']: any operations lead from [k] to [k'], of which the
    successful sends to and receives from [c], in order, are [sent] and [received];
    the channel itself is not created anew. *)
Inductive history : list MessageEnvelope.t → list MessageEnvelope.t → Kernel.t → Kernel.t → Prop :=
| history_nil k : history [] [] k k
| history_snoc sent received k k1 k2 o (HO : HashOrder) :
    history sent received k k1 →
    (∀ d, o = KOp.CreateChannel d → Drawn.channel d ≠ c) →
    KOp.exec o k1 = Return k2 →
    history (sent ++ sends o k1) (received ++ receives o k1) k k2.

Lemma exec_contents `{HashOrder} o k k' l :
  (∀ d, o = KOp.CreateChannel d → Drawn.channel d ≠ c) → KOp.exec o k = Return k' →
  fault_free k → contents c k = Some l →
  fault_free k' ∧ ∃ l', contents c k' = Some l' ∧ l ++ sends o k = receives o k ++ l'.
Proof.
  intros Hn He Hf Hl. destruct (passes_messages o) eqn:Ho.
  2: { destruct (same_messages_fault_free k k' Hf (exec_same_messages o k k' Ho He)) as [Hf' E].
       split; [done|]. exists l. unfold contents. rewrite E. split; [done|].
       destruct o; try done; simpl; by rewrite app_nil_r. }
  destruct o as [d|c' m|c' timeout| | | | | | | | | | | | | | | | | | | | | | | | | | | | | | | | |];
    try done; simpl in He.
  - injection He as <-. split; [by destruct Hf|]. exists l. simpl. rewrite app_nil_r.
    unfold contents. simpl. rewrite lookup_insert_ne by by apply Hn. done.
  - apply after_inv in He as [x E]. simpl. rewrite E.
    destruct (send_contents c' m k x k' Hf E) as (Hf' & Hne & Heq & Hok). split; [done|].
    destruct (decide (c' = c)) as [->|Hc].
    + exists (l ++ if is_ok x then [m] else []). rewrite Heq, Hl. by destruct x.
    + exists l. rewrite Hne by done. split; [done|]. destruct x; by rewrite app_nil_r.
  - apply after_inv in He as [x E]. simpl. rewrite E, app_nil_r.
    destruct (receive_contents c' timeout k x k' Hf E) as (Hf' & Hne & Heq). split; [done|].
    destruct (decide (c' = c)) as [->|Hc].
    + destruct x as [m|e]; [|by exists l; rewrite Heq].
      destruct Heq as (l' & E1 & E2). exists l'. split; [done|]. simpl. congruence.
    + exists l. rewrite Hne by done. by destruct x.
Qed.
End history.

(** ** Delayed messages *)
Definition delayed_for (c : ChannelId.t) (l : list DelayedMessage.t) : list DelayedMessage.t :=
  filter (λ m, DelayedMessage.channel m = c) l.
Definition due (now : Instant.t) (m : DelayedMessage.t) : Prop :=
  Instant.nanos (DelayedMessage.deliver_at m) ≤ Instant.nanos now.
#[export] Instance due_dec now m : Decision (due now m).
Proof. unfold due. apply _. Defined.
Definition is_full (ch : Channel.t) : Prop :=
  MessageQueue.remaining_capacity (Channel.queue ch) = 0.

Lemma delayed_for_app c l1 l2 : delayed_for c (l1 ++ l2) = delayed_for c l1 ++ delayed_for c l2.
Proof. apply filter_app. Qed.
Lemma delayed_for_cons c m l :
  delayed_for c (m :: l)
    = (if decide (DelayedMessage.channel m = c) then [m] else []) ++ delayed_for c l.
Proof. unfold delayed_for. rewrite filter_cons. by destruct (decide _). Qed.

(** What a round of delivery did to the channel [c] while it went through [l]: the
    delivered messages [out] were due and are appended in order, the others stay. *)
Record delivered (now : Instant.t) (c : ChannelId.t) (l rem rem' : list DelayedMessage.t)
    (ch ch' : Channel.t) (out : list DelayedMessage.t) : Prop := {
  dlv_queue : MessageQueue.messages (Channel.queue ch')
    = MessageQueue.messages (Channel.queue ch) ++ (DelayedMessage.message <$> out);
  dlv_capacity : MessageQueue.capacity (Channel.queue ch')
    = MessageQueue.capacity (Channel.queue ch);
  dlv_all : delayed_for c rem ++ delayed_for c l ≡ₚ out ++ delayed_for c rem';
  dlv_order : out `sublist_of` delayed_for c l;
  dlv_due : Forall (due now) out;
  dlv_stays : ∀ m, m ∈ delayed_for c rem' → m ∈ delayed_for c rem ∨ ¬ due now m ∨ is_full ch'
}.

Lemma full_push m ch :
  ¬ is_full ch →
  MessageQueue.push m (Channel.queue ch)
    = (Ok tt, (Channel.queue ch) <| MessageQueue.messages ::= λ l, l ++ [m] |>).
Proof.
  unfold is_full, MessageQueue.remaining_capacity, saturating_sub, MessageQueue.push. intros Hf.
  destruct (N.leb_spec (MessageQueue.capacity (Channel.queue ch))
    (MessageQueue.len (Channel.queue ch))); [lia|done].
Qed.

Lemma is_full_grow ch ch' out :
  MessageQueue.messages (Channel.queue ch') = MessageQueue.messages (Channel.queue ch) ++ out →
  MessageQueue.capacity (Channel.queue ch') = MessageQueue.capacity (Channel.queue ch) →
  is_full ch → is_full ch'.
Proof.
  unfold is_full, MessageQueue.remaining_capacity, saturating_sub, MessageQueue.len, len.
  intros -> ->. rewrite length_app. lia.
Qed.

(** The step of the loop on a message that stays. *)
Lemma delivered_keep now c m l rem rem' ch ch' out :
  (DelayedMessage.channel m = c → due now m → is_full ch) →
  delivered now c l (rem ++ [m]) rem' ch ch' out → delivered now c (m :: l) rem rem' ch ch' out.
Proof.
  intros Hm [H1 H2 H3 H4 H5 H6]. split; try done.
  - rewrite <- H3, delayed_for_app, <- app_assoc, !delayed_for_cons. by rewrite app_nil_r.
  - etransitivity; [exact H4|]. rewrite delayed_for_cons. by apply sublist_inserts_l.
  - intros x Hx. destruct (H6 x Hx) as [Hr|[Hd|Hf]]; [|by auto..].
    rewrite delayed_for_app in Hr. apply elem_of_app in Hr as [Hr|Hr]; [by auto|]. right.
    unfold delayed_for in Hr. apply list_elem_of_filter in Hr as [Hc ->%list_elem_of_singleton].
    destruct (decide (due now m)) as [Hd|Hd]; [|by left]. right.
    eapply is_full_grow; eauto.
Qed.

Lemma deliver_fold now l rem chans c ch :
  chans !! c = Some ch →
  ∃ ch' out, (foldl (Kernel.deliver_one now) (rem, chans) l).2 !! c = Some ch' ∧
    delivered now c l rem (foldl (Kernel.deliver_one now) (rem, chans) l).1 ch ch' out.
Proof.
  revert rem chans ch. induction l as [|m l IH]; intros rem chans ch Hch.
  { exists ch, []. split; [done|]. split; simpl; try done; [by rewrite app_nil_r..| |by auto].
    by rewrite app_nil_r. }
  cbn [foldl]. unfold Kernel.deliver_one at 2 4.
  destruct (N.ltb_spec (Instant.nanos now) (Instant.nanos (DelayedMessage.deliver_at m))) as [Hlt|Hge].
  { destruct (IH (rem ++ [m]) chans ch Hch) as (ch' & out & E & D). exists ch', out.
    split; [done|]. apply delivered_keep; [|done]. unfold due. lia. }
  destruct (chans !! DelayedMessage.channel m) as [chm|] eqn:Em.
  2: { destruct (IH rem chans ch Hch) as (ch' & out & E & [H1 H2 H3 H4 H5 H6]). exists ch', out.
       split; [done|]. assert (DelayedMessage.channel m ≠ c) by congruence.
       split; rewrite ?delayed_for_cons, ?decide_False by done; done. }
  destruct (N.eqb_spec (MessageQueue.remaining_capacity (Channel.queue chm)) 0) as [Hfull|Hroom].
  { destruct (IH (rem ++ [m]) chans ch Hch) as (ch' & out & E & D). exists ch', out.
    split; [done|]. apply delivered_keep; [|done]. intros Hc _. simplify_eq. congruence. }
  rewrite full_push by done. simpl.
  destruct (decide (DelayedMessage.channel m = c)) as [Hc|Hc].
  - simplify_eq. edestruct (IH rem) as (ch' & out & E & [H1 H2 H3 H4 H5 H6]);
      [apply lookup_insert_eq|].
    exists ch', (m :: out). split; [exact E|]. split.
    + rewrite H1. simpl. by rewrite <- app_assoc.
    + done.
    + rewrite delayed_for_cons, decide_True by done. simpl.
      rewrite <- H3. by rewrite <- Permutation_middle.
    + rewrite delayed_for_cons, decide_True by done. by constructor.
    + by constructor.
    + done.
  - edestruct (IH rem) as (ch' & out & E & [H1 H2 H3 H4 H5 H6]);
      [by rewrite lookup_insert_ne|].
    exists ch', out. split; [exact E|].
    split; rewrite ?delayed_for_cons, ?decide_False by done; done.
Qed.

(** A send the kernel must refuse: the sender is not on the channel's access list, or
    the destination service does not speak the message's schema version. *)
Definition send_forbidden (c : ChannelId.t) (m : MessageEnvelope.t) (k : Kernel.t) : Prop :=
  (∃ id a, MessageEnvelope.source m = Some id ∧ Kernel.channel_access k !! c = Some a ∧
     id ∉ ChannelAccess.senders a) ∨
  (∃ p, Kernel.service_policies k !! MessageEnvelope.destination m = Some p ∧
     (SchemaVersion.major (VersionPolicy.current_version p)
        < SchemaVersion.major (MessageEnvelope.schema_version m) ∨
      SchemaVersion.major (MessageEnvelope.schema_version m) < VersionPolicy.min_major p)).
(** A receive it must refuse. *)
Definition receive_forbidden (c : ChannelId.t) (k : Kernel.t) : Prop :=
  ∃ id a, Kernel.current_receive_task k = Some id ∧ Kernel.channel_access k !! c = Some a ∧
     id ∉ ChannelAccess.receivers a.

Lemma check_schema_refuses `{UuidFormat} m k p :
  Kernel.service_policies k !! MessageEnvelope.destination m = Some p →
  SchemaVersion.major (VersionPolicy.current_version p)
     < SchemaVersion.major (MessageEnvelope.schema_version m) ∨
  SchemaVersion.major (MessageEnvelope.schema_version m) < VersionPolicy.min_major p →
  is_err (Kernel.check_schema m k) = true.
Proof.
  intros Hp Hv. unfold Kernel.check_schema, VersionPolicy.check_compatibility. rewrite Hp.
  destruct (N.ltb_spec (SchemaVersion.major (VersionPolicy.current_version p))
    (SchemaVersion.major (MessageEnvelope.schema_version m))); [done|].
  destruct (N.ltb_spec (SchemaVersion.major (MessageEnvelope.schema_version m))
    (VersionPolicy.min_major p)); [done|lia].
Qed.

Module MessageSafety.
Section theorems.
Context `{UuidFormat} `{DefaultHasher}.

(** C3: a channel is a reliable FIFO: over any history of kernel calls without injected
    faults (sends and receives on all channels by all tasks, spawning, running,
    sleeping, terminating, budget charges, ...), what was waiting at the start followed
    by what was successfully sent is exactly what was successfully received followed
    by what is waiting at the end: no message is lost, duplicated, invented or
    reordered. *)
Theorem channel_is_reliable_fifo c sent received k k' l :
  fault_free k → contents c k = Some l → history c sent received k k' →
  ∃ l', contents c k' = Some l' ∧ l ++ sent = received ++ l'.
Proof.
  intros Hf Hl Hh.
  assert (fault_free k' ∧ ∃ l', contents c k' = Some l' ∧ l ++ sent = received ++ l') as [_ ?];
    [|done].
  induction Hh as [|sent received k k1 k2 o HO Hh IH Hn He].
  - split; [done|]. exists l. by rewrite app_nil_r.
  - destruct (IH Hf Hl) as (Hf1 & l1 & H1 & E1).
    destruct (exec_contents c o k1 k2 l1 Hn He Hf1 H1) as (Hf2 & l2 & H2 & E2).
    split; [done|]. exists l2. split; [done|].
    by rewrite app_assoc, E1, <- app_assoc, E2, app_assoc.
Qed.

(** A message the kernel must refuse has no effect at all: a send by a task that is
    not on the channel's list of senders, or in a schema version outside the range the
    destination supports, and a receive by a task that is not on the list of
    receivers, return an error and leave the whole kernel state as it was (no budget is
    charged, nothing is queued). *)
Theorem forbidden_message_has_no_effect `{HashOrder} c m timeout k :
  (send_forbidden c m k → ∃ e, Kernel.send_message c m k = Return (Err e, k)) ∧
  (receive_forbidden c k → ∃ e, Kernel.receive_message c timeout k = Return (Err e, k)).
Proof.
  split.
  - unfold Kernel.send_message. intros [(id & a & Hs & Ha & Hn)|(p & Hp & Hv)].
    + unfold Kernel.check_send_access, ChannelAccess.allows_send.
      rewrite Hs, Ha, bool_decide_false by done. by eexists.
    + destruct (Kernel.check_send_access c m k); [|by eexists].
      pose proof (check_schema_refuses m k p Hp Hv) as He.
      destruct (Kernel.check_schema m k); [done|by eexists].
  - intros (id & a & Hs & Ha & Hn).
    unfold Kernel.receive_message, Kernel.check_receive_access, ChannelAccess.allows_receive.
    rewrite Hs, Ha, bool_decide_false by done. by eexists.
Qed.

(** Delayed messages are conserved: delivering the due messages of an existing
    channel appends some of them, in their order, to its queue and keeps the others;
    every message is either delivered or kept, none twice; only due messages are
    delivered, and a due message stays behind only when the queue is full. *)
Theorem delayed_messages_are_conserved k c ch :
  Kernel.channels k !! c = Some ch →
  let k' := Kernel.process_delayed_messages k in
  ∃ ch' out, Kernel.channels k' !! c = Some ch' ∧
    delivered (Kernel.current_time k) c (Kernel.delayed_messages k) []
      (Kernel.delayed_messages k') ch ch' out.
Proof.
  intros Hc k'. unfold k'. rewrite process_delayed_frame. simpl. by apply deliver_fold.
Qed.

(** Channel queues are bounded: in every reachable state no queue holds more
    messages than its capacity, and a send to a full queue fails with that queue
    unchanged. *)
Theorem channel_capacity_is_respected `{HashOrder} k0 k c ch :
  initial k0 → kreach any_call k0 k → Kernel.channels k !! c = Some ch →
  MessageQueue.len (Channel.queue ch) ≤ MessageQueue.capacity (Channel.queue ch) ∧
  (MessageQueue.len (Channel.queue ch) = MessageQueue.capacity (Channel.queue ch) →
   ∀ m, Kernel.deliver c m k = Return (Err (KernelError.SendFailed "Channel queue full"), k)).
Proof.
  intros Hi Hr Hc. split; [by apply (reach_queue k0 k any_call Hi Hr c)|].
  intros Hfull m. unfold Kernel.deliver, MessageQueue.push. rewrite Hc, Hfull, N.leb_refl. done.
Qed.
End theorems.

#[local] Existing Instance sample_format.
#[local] Existing Instance sample_hasher.

Notation sample_message := QueueSpec.sample_message.
Definition sample_channel : ChannelId.t := ChannelId.mk 203.
Definition chat : list KOp.t :=
  [KOp.Send sample_channel (sample_message 1); KOp.Send sample_channel (sample_message 2);
   KOp.RunForTicks 3; KOp.Recv sample_channel None; KOp.Send sample_channel (sample_message 3)].

(** The history of a list of operations, when all of them return. *)
Fixpoint hrun (c : ChannelId.t) (ops : list KOp.t) (sent received : list MessageEnvelope.t)
    (k : Kernel.t) : option (list MessageEnvelope.t * list MessageEnvelope.t * Kernel.t) :=
  match ops with
  | [] => Some (sent, received, k)
  | o :: ops =>
      match @KOp.exec canonical_order _ _ o k with
      | Return k1 => hrun c ops (sent ++ @sends _ c canonical_order o k)
                       (received ++ @receives _ c canonical_order o k) k1
      | _ => None
      end
  end.

Lemma hrun_history c ops sent received k0 k r :
  (∀ d, KOp.CreateChannel d ∉ ops) → history c sent received k0 k →
  hrun c ops sent received k = Some r → history c r.1.1 r.1.2 k0 r.2.
Proof.
  revert sent received k. induction ops as [|o ops IH]; intros sent received k Hn Hh; simpl;
    [by intros [= <-]|].
  destruct (@KOp.exec canonical_order _ _ o k) as [k1| |] eqn:E; [|done..].
  apply IH; [intros d Hd; by apply (Hn d); right|].
  eapply (history_snoc c sent received k0 k k1 o canonical_order); [done| |done].
  intros d -> _. by apply (Hn d); left.
Qed.

Lemma channel_is_reliable_fifo_witness :
  ∃ sent received k' l',
    sent = [sample_message 1; sample_message 2; sample_message 3] ∧
    received = [sample_message 1] ∧ contents sample_channel k' = Some l' ∧
    [] ++ sent = received ++ l'.
Proof.
  destruct (hrun sample_channel chat [] [] (sample_state two_tasks)) as [[[sent received] k']|] eqn:E;
    [|vm_compute in E; discriminate].
  exists sent, received, k'.
  assert (sent = [sample_message 1; sample_message 2; sample_message 3] ∧
    received = [sample_message 1]) as [Hs Hr] by (vm_compute in E; by injection E as <- <- _).
  apply (hrun_history sample_channel chat [] [] (sample_state two_tasks)) in E; [| |constructor].
  2: { intros d Hd. repeat (apply elem_of_cons in Hd as [Hd|Hd]; [discriminate|]).
       by apply not_elem_of_nil in Hd. }
  destruct (channel_is_reliable_fifo sample_channel sent received (sample_state two_tasks) k' []
    ltac:(by vm_compute) ltac:(by vm_compute) E) as (l' & H1 & H2).
  by exists l'.
Defined.

(** Only task 2 may use the channel. *)
Definition guarded_state : Kernel.t :=
  sample_state (two_tasks ++ [KOp.GrantAccess sample_channel (TaskId.mk 2) ChannelAccessMode.Both;
                              KOp.SetReceiveContext (TaskId.mk 1)]).

Lemma forbidden_message_has_no_effect_witness :
  let m := MessageEnvelope.with_source (TaskId.mk 1) (sample_message 1) in
  (∃ e, @Kernel.send_message canonical_order _ sample_channel m guarded_state
          = Return (Err e, guarded_state)) ∧
  (∃ e, @Kernel.receive_message canonical_order _ sample_channel None guarded_state
          = Return (Err e, guarded_state)).
Proof.
  intros m. destruct (Kernel.channel_access guarded_state !! sample_channel) as [a|] eqn:Ea;
    [|vm_compute in Ea; discriminate].
  assert (bool_decide (TaskId.mk 1 ∈ ChannelAccess.senders a) = false ∧
    bool_decide (TaskId.mk 1 ∈ ChannelAccess.receivers a) = false)
    as [Hs%bool_decide_eq_false Hr%bool_decide_eq_false]
    by (vm_compute in Ea; injection Ea as <-; by vm_compute).
  destruct (@forbidden_message_has_no_effect _ canonical_order sample_channel m None guarded_state)
    as [H1 H2].
  split; [apply H1; left|apply H2]; exists (TaskId.mk 1), a; by split_and!.
Defined.

Lemma delayed_messages_are_conserved_witness :
  let k := (sample_state two_tasks) <| Kernel.delayed_messages :=
             [DelayedMessage.mk sample_channel (sample_message 1) (Instant.mk 0);
              DelayedMessage.mk sample_channel (sample_message 2) (Instant.mk 5)] |> in
  ∃ ch ch' out, Kernel.channels k !! sample_channel = Some ch ∧
    delivered (Kernel.current_time k) sample_channel (Kernel.delayed_messages k) []
      (Kernel.delayed_messages (Kernel.process_delayed_messages k)) ch ch' out.
Proof.
  intros k. destruct (Kernel.channels k !! sample_channel) as [ch|] eqn:E;
    [|vm_compute in E; discriminate].
  destruct (delayed_messages_are_conserved k sample_channel ch E) as (ch' & out & _ & Hd).
  by exists ch, ch', out.
Defined.

Lemma channel_capacity_is_respected_witness :
  ∃ ch, Kernel.channels (sample_state two_tasks) !! sample_channel = Some ch ∧
        MessageQueue.len (Channel.queue ch) ≤ MessageQueue.capacity (Channel.queue ch).
Proof.
  destruct (Kernel.channels (sample_state two_tasks) !! sample_channel) as [ch|] eqn:E;
    [|vm_compute in E; discriminate].
  exists ch. split; [done|].
  apply (@channel_capacity_is_respected _ _ canonical_order sample_kernel (sample_state two_tasks)
    sample_channel ch sample_initial (sample_reach _) E).
Defined.
End MessageSafety.
