(* ===== verification/RunProps.v ===== *)
(** * The scheduling loops of the kernel

    [SimulatedKernel::run_for_ticks] on a single core: it returns, consumes no more
    than the ticks it was given, and stops early only when nothing is left to run;
    and what it does to a task whose slice is cut short. *)

From S2P Require Import Prelude CoreTypes Debug Resources Identity Ipc Policy Queue AuditLogs.
From S2P Require Import Faults Sched SchedProps Smp AddrSpace SyscallGate Kernel KernelSpec.
From S2P Require Import KernelProps BudgetProps.
Open Scope string_scope.
Open Scope list_scope.
Open Scope N_scope.

(** [n] more ticks fit into all 64-bit counters. *)
Record headroom (n : N) (k : Kernel.t) : Prop := {
  hr_npt : 0 < Kernel.nanos_per_tick k;
  hr_ticks : SimTimerDevice.ticks (Kernel.timer k) + n < u64_max;
  hr_time : (SimTimerDevice.ticks (Kernel.timer k) + n) * Kernel.nanos_per_tick k ≤ u64_max;
  hr_sync : Scheduler.current_ticks (Kernel.scheduler k) = SimTimerDevice.ticks (Kernel.timer k);
  hr_sched : sched_inv (view k)
}.
Definition cpu_used (i : IdentityMetadata.t) : N :=
  Quantity.val (ResourceUsage.cpu_ticks (IdentityMetadata.usage i)).
Definition cpu_room (n : N) (k : Kernel.t) : Prop :=
  ∀ e i, Kernel.identity_table k !! e = Some i → cpu_used i + n ≤ u64_max.
Definition quantum_of (k : Kernel.t) : N :=
  SchedulerConfig.quantum_ticks (Scheduler.config (Kernel.scheduler k)).
Definition elapsed (k : Kernel.t) : N := SimTimerDevice.ticks (Kernel.timer k).

(** What a step of the loops leaves alone. *)
Record steady_frame (k k' : Kernel.t) : Prop := {
  sf_npt : Kernel.nanos_per_tick k' = Kernel.nanos_per_tick k;
  sf_smp : Kernel.smp k = None → Kernel.smp k' = None;
  sf_quantum : quantum_of k' = quantum_of k
}.

#[export] Instance steady_frame_preorder : PreOrder steady_frame.
Proof.
  split; [by split|]. intros k1 k2 k3 [A1 B1 C1] [A2 B2 C2]. split; [congruence|by auto|congruence].
Qed.

Lemma tick_config `{HashOrder} d s s' :
  Scheduler.on_tick_advanced d s = Return s' → Scheduler.config s' = Scheduler.config s.
Proof.
  unfold Scheduler.on_tick_advanced.
  intros (now & _ & (s1 & H1 & (s2 & H2 & [= <-])%bind_Return)%bind_Return)%bind_Return.
  apply charge_current_spec in H1 as (_ & C1 & _). apply refresh_deadlines_spec in H2 as [].
  destruct (wake_ready_tasks_frame s2) as [-> _]. by rewrite rf_config, C1.
Qed.

Section loops.
Context `{HashOrder} `{UuidFormat}.

Lemma tick_once_ok n k :
  headroom (n + 1) k →
  ∃ k', Kernel.tick_once k = Return (1, k') ∧ headroom n k' ∧ steady_frame k k' ∧
    elapsed k' = elapsed k + 1 ∧ Kernel.identity_table k' = Kernel.identity_table k.
Proof.
  intros [Hn Ht Hm Hs [Hi Hk]]. unfold Kernel.tick_once.
  set (t := SimTimerDevice.ticks (Kernel.timer k)) in *.
  assert (∃ k1, Kernel.advance_time (Duration.from_nanos (Kernel.nanos_per_tick k)) k = Return k1)
    as [k1 E1].
  { destruct (on_tick_advanced_ok 1 (Kernel.scheduler k) Hk) as (sc & Esc & _); [lia|].
    unfold Kernel.advance_time, div_u64, Duration.as_nanos, Duration.from_nanos. simpl.
    rewrite (proj2 (N.eqb_neq _ _)), N.div_same by lia. simpl.
    unfold SimTimerDevice.advance_ticks, checked_add. fold t.
    rewrite (proj2 (N.leb_le _ _)) by lia. simpl.
    unfold Kernel.sync_time_from_timer, mul_u64. simpl.
    rewrite (proj2 (N.leb_le _ _)) by nia. simpl.
    match goal with |- context [Kernel.expire_capability_leases ?x] =>
      destruct (expire_frame x) as (tb & lg & ->) end.
    rewrite process_delayed_frame. simpl. rewrite Esc. by eexists. }
  rewrite E1. simpl.
  pose proof (advance_time_refines _ _ _ E1) as (tr & Htr & Hst).
  assert (sched_inv (view k1)) as Hsi.
  { apply (steps_invariant (λ _, True) sched_inv tr (view k)); [|by apply Forall_true|done|done].
    intros a v1 v2 _ Hv Ha. by eapply sched_inv_step. }
  apply advance_time_inv in E1 as (m & tb & lg & c & dm & sc & _ & -> & _ & _ & Hsc & ->).
  unfold Duration.as_nanos, Duration.from_nanos in *. simpl in *.
  rewrite N.div_same in * by lia. unfold SimTimerDevice.current_ticks. simpl. fold t in Hsc, Hsi |- *.
  unfold sub_u64, checked_sub. rewrite (proj2 (N.leb_le _ _)) by lia. simpl.
  replace (t + 1 - t) with 1 by lia.
  eexists. split; [reflexivity|]. unfold elapsed. simpl. split_and!; try done.
  - split; simpl; [done|lia|nia| |done]. apply tick_ticks in Hsc. lia.
  - split; try done. unfold quantum_of. simpl. by rewrite (tick_config _ _ _ Hsc).
Qed.

(** What a charge of [n] ticks leaves alone. *)
Record charge_frame (n : N) (k k' : Kernel.t) : Prop := {
  cf_steady : steady_frame k k';
  cf_timer : Kernel.timer k' = Kernel.timer k;
  cf_ticks : Scheduler.current_ticks (Kernel.scheduler k')
    = Scheduler.current_ticks (Kernel.scheduler k);
  cf_used : ∀ e i', Kernel.identity_table k' !! e = Some i' →
     ∃ i, Kernel.identity_table k !! e = Some i ∧ cpu_used i' ≤ cpu_used i + n
}.

Lemma charge_frame_same n k k' :
  steady_frame k k' → Kernel.timer k' = Kernel.timer k →
  Scheduler.current_ticks (Kernel.scheduler k') = Scheduler.current_ticks (Kernel.scheduler k) →
  Kernel.identity_table k' = Kernel.identity_table k → charge_frame n k k'.
Proof. intros H1 H2 H3 H4. split; try done. intros e i'. rewrite H4. intros. exists i'. split; [done|lia]. Qed.

Lemma charge_frame_add n eid i event k :
  Kernel.identity_table k !! eid = Some i →
  charge_frame n k (Kernel.record_resource event (Kernel.set_usage eid
    (ResourceUsage.consume_cpu_ticks (Quantity.new n) (IdentityMetadata.usage i)) k)).
Proof.
  intros Ei. split; [by split|done|done|]. intros e i'. simpl. rewrite lookup_alter.
  case_decide as He; [|by intros; exists i'; split; [|lia]]. subst e.
  rewrite Ei. intros [= <-]. exists i. split; [done|]. unfold cpu_used. simpl.
  unfold saturating_add. lia.
Qed.

Lemma charge_frame_cancel n eid event k :
  charge_frame n k (Kernel.cancel_identity eid "CpuTicks" (Kernel.record_resource event k)).
Proof.
  destruct (cancel_frame eid "CpuTicks" (Kernel.record_resource event k)) as (Ei & _).
  revert Ei. unfold Kernel.cancel_identity, Kernel.cancel_scheduled.
  destruct (list_find _ _) as [[j [id e]]|]; [|by intros; apply charge_frame_same].
  destruct (Kernel.smp _) eqn:Esmp; simpl in Esmp; intros; apply charge_frame_same; try done.
  - split; try done. simpl. by rewrite Esmp.
  - split; try done.
    unfold quantum_of, Scheduler.cancel_task, Scheduler.leave_queue. simpl. by case_bool_decide.
  - unfold Scheduler.cancel_task, Scheduler.leave_queue. simpl. by case_bool_decide.
Qed.

Lemma cpu_frame eid n k r k' :
  Kernel.try_consume_cpu_ticks eid n k = Return (r, k') → charge_frame n k k'.
Proof.
  unfold Kernel.try_consume_cpu_ticks.
  assert (charge_frame n k k) as Hk by by apply charge_frame_same.
  destruct (Kernel.is_identity_cancelled eid k); [by intros [= _ <-]|].
  destruct (Kernel.identity_table k !! eid) as [i|] eqn:Ei; [|by intros [= _ <-]].
  destruct (IdentityMetadata.budget i) as [b|]; [|by intros [= _ <-]].
  destruct (ResourceBudget.cpu_ticks b) as [l|];
    [|intros [= _ <-]; by apply charge_frame_add].
  intros (x & _ & Hx)%bind_Return. destruct (_ <? _); injection Hx as _ <-;
    [apply charge_frame_cancel|by apply charge_frame_add].
Qed.

(** Charging the tick of a slice. *)
Lemma charge_ticks_ok n id k :
  headroom n k → cpu_room (n + 1) k →
  ∃ b k', Kernel.charge_ticks id 1 k = Return (b, k') ∧ headroom n k' ∧ cpu_room n k' ∧
    steady_frame k k' ∧ elapsed k' = elapsed k.
Proof.
  intros Hh Hr. unfold Kernel.charge_ticks.
  destruct (Kernel.get_task_identity id k) as [eid|].
  2: { exists true, k. split_and!; try done. intros e i He. specialize (Hr e i He). lia. }
  pose proof (cpu_charge_outcome eid 1 k) as Hc.
  destruct (Kernel.try_consume_cpu_ticks eid 1 k) as [[r k']| |] eqn:E; [|exfalso..|done].
  2: { destruct Hc as (i & Hi & Hlt). specialize (Hr eid i Hi). unfold cpu_used in Hr. lia. }
  exists (is_ok r), k'. pose proof (cpu_frame eid 1 k r k' E) as [F1 F2 F3 F4].
  destruct Hh as [Hn Ht Hm Hs Hk]. split_and!; try done.
  - split; rewrite ?(sf_npt _ _ F1), ?F2; try done; [congruence|].
    destruct (cpu_refines eid 1 k r k' E) as (tr & _ & Hst).
    apply (steps_invariant (λ _, True) sched_inv tr (view k)); [|by apply Forall_true|done|done].
    intros a v1 v2 _ Hv Ha. by eapply sched_inv_step.
  - intros e i' He. destruct (F4 e i' He) as (i & Hi & Hle). specialize (Hr e i Hi). lia.
  - unfold elapsed. by rewrite F2.
Qed.

(** The state of the loops after [used] of [left] ticks. *)
Record progress (left used : N) (k k' : Kernel.t) : Prop := {
  pg_used : used ≤ left;
  pg_headroom : headroom (left - used) k';
  pg_cpu : cpu_room (left - used) k';
  pg_steady : steady_frame k k';
  pg_elapsed : elapsed k' = elapsed k + used
}.

Lemma progress_refl left k : headroom left k → cpu_room left k → progress left 0 k k.
Proof. intros. split; rewrite ?N.sub_0_r; try done; lia. Qed.

Lemma progress_trans left u1 u2 k1 k2 k3 :
  progress left u1 k1 k2 → progress (left - u1) u2 k2 k3 → progress left (u1 + u2) k1 k3.
Proof.
  intros [A1 A2 A3 A4 A5] [B1 B2 B3 B4 B5].
  rewrite <- N.sub_add_distr in *. split; try done; [lia|by etransitivity|lia].
Qed.

Lemma slice_tick_ok left id k :
  0 < left → headroom left k → cpu_room left k →
  ∃ b k1 k2, Kernel.tick_once k = Return (1, k1) ∧ Kernel.charge_ticks id 1 k1 = Return (b, k2) ∧
    progress left 1 k k2.
Proof.
  intros Hl Hh Hc.
  destruct (tick_once_ok (left - 1) k) as (k1 & E1 & H1 & S1 & L1 & I1);
    [by rewrite N.sub_add by lia|].
  destruct (charge_ticks_ok (left - 1) id k1 H1) as (b & k2 & E2 & H2 & C2 & S2 & L2).
  { unfold cpu_room. rewrite I1, N.sub_add by lia. done. }
  exists b, k1, k2. split_and!; try done. split; try done; [lia|by etransitivity|lia].
Qed.

Lemma run_slice_ok fuel id quantum ticks tt tc k :
  tc ≤ ticks → ticks ≤ u64_max → tt ≤ tc → (N.to_nat (ticks - tc) < fuel)%nat →
  headroom (ticks - tc) k → cpu_room (ticks - tc) k →
  ∃ used k', Kernel.run_slice fuel id quantum ticks tt tc k = Return (tt + used, tc + used, k') ∧
    progress (ticks - tc) used k k' ∧
    (tt < quantum → tc < ticks → Kernel.is_runnable id k = true → 0 < used).
Proof.
  revert tt tc k. induction fuel as [|fuel IH]; intros tt tc k Htc Hmax Htt Hf Hh Hc; [lia|].
  cbn [Kernel.run_slice].
  assert (∃ used k', Return (tt, tc, k) = Return (tt + used, tc + used, k') ∧
    progress (ticks - tc) used k k' ∧ used = 0) as (u0 & k0 & E0 & P0 & ->).
  { exists 0, k. rewrite !N.add_0_r. split_and!; try done. by apply progress_refl. }
  destruct (N.ltb_spec tt quantum) as [Hq|Hq]; simpl; [|exists 0, k0; split_and!; [done|done|lia]].
  destruct (N.ltb_spec tc ticks) as [Ht|Ht]; [|exists 0, k0; split_and!; [done|done|lia]].
  destruct (Kernel.is_runnable id k) eqn:Er; simpl; [|by exists 0, k0].
  destruct (slice_tick_ok (ticks - tc) id k) as (b & k1 & k2 & E1 & E2 & P1); [lia|done..|].
  rewrite E1. simpl. unfold add_u64, checked_add.
  rewrite !(proj2 (N.leb_le _ _)) by lia. simpl. rewrite E2. simpl.
  destruct b; [|exists 1, k2; by split_and!; [done|done|lia]].
  pose proof (pg_headroom _ _ _ _ P1) as Hh2. pose proof (pg_cpu _ _ _ _ P1) as Hc2.
  rewrite <- N.sub_add_distr in Hh2, Hc2.
  destruct (IH (tt + 1) (tc + 1) k2) as (used & k' & E3 & P3 & _); [lia..|done|done|].
  exists (1 + used), k'. rewrite !N.add_assoc. split_and!; [done| |lia].
  eapply progress_trans; [exact P1|]. by rewrite <- N.sub_add_distr.
Qed.

Lemma sched_step_ok left o k sc :
  (∀ d, o ≠ SchedOp.Tick d) → fresh_ids o (Kernel.scheduler k) →
  SchedOp.exec o (Kernel.scheduler k) = Return sc →
  Scheduler.config sc = Scheduler.config (Kernel.scheduler k) →
  headroom left k → cpu_room left k → progress left 0 k (k <| Kernel.scheduler := sc |>).
Proof.
  intros Ho Hf He Hcfg [Hn Ht Hm Hs [Hw Hk]] Hc. rewrite <- (N.sub_0_r left) in *.
  split; unfold elapsed; simpl; rewrite ?N.sub_0_r in *; try done; [lia| |by split; try done; unfold quantum_of; simpl; rewrite Hcfg|lia].
  split; simpl; try done.
  - rewrite <- Hs. by apply (exec_ticks o).
  - split; simpl; [by eapply exec_inv|by eapply exec_table_ok].
Qed.

Lemma dequeue_config s : Scheduler.config (Scheduler.dequeue_next s).2 = Scheduler.config s.
Proof. unfold Scheduler.dequeue_next. by destruct (Scheduler.pick_next s) as [[?|] ?]. Qed.

Lemma preempt_config s : Scheduler.config (Scheduler.preempt_current s).2 = Scheduler.config s.
Proof.
  unfold Scheduler.preempt_current. destruct (Scheduler.current_task s) as [id|]; [|done].
  simpl. destruct (Scheduler.tasks s !! id) as [info|]; [|done]. case_bool_decide; [|done].
  destruct (Scheduler.budget_spent info); [done|]. simpl.
  match goal with |- context [Scheduler.enqueue_runnable _ ?x] =>
    destruct (enqueue_runnable_eq id x) as (q & -> & _) end. done.
Qed.

(** Selecting from a non-empty queue yields a runnable task. *)
Lemma dequeue_runnable s :
  inv False s → Scheduler.has_runnable_tasks s = true →
  ∃ id sc, Scheduler.dequeue_next s = (Some id, sc) ∧
    Scheduler.task_state id sc = Some TaskState.Runnable.
Proof.
  intros [Hw _] Hr. pose proof (λ i, dequeue_next_state i s) as Hst.
  unfold Scheduler.has_runnable_tasks in Hr. apply negb_true_iff, bool_decide_eq_false in Hr.
  unfold Scheduler.dequeue_next in *.
  destruct (Scheduler.pick_next s) as [[id|] q] eqn:Ep; apply pick_next_spec in Ep.
  - eexists _, _. split; [reflexivity|]. rewrite Hst. apply (wf_queued s Hw). rewrite Ep. by left.
  - by destruct Ep.
Qed.

Lemma run_loop_ok fuel ticks tc rounds k :
  tc ≤ ticks → ticks ≤ u64_max → rounds ≤ tc → (N.to_nat (ticks - tc) < fuel)%nat →
  headroom (ticks - tc) k → cpu_room (ticks - tc) k → 0 < quantum_of k →
  ∃ used rounds' k', Kernel.run_loop fuel ticks tc rounds k = Return (rounds', k') ∧
    progress (ticks - tc) used k k' ∧ rounds ≤ rounds' ≤ rounds + used ∧
    (tc + used = ticks ∨ Scheduler.run_queue (Kernel.scheduler k') = []).
Proof.
  revert tc rounds k. induction fuel as [|fuel IH]; intros tc rounds k Htc Hmax Hrd Hf Hh Hc Hq; [lia|].
  cbn [Kernel.run_loop].
  destruct (N.ltb_spec tc ticks) as [Ht|Ht]; cbn [andb].
  2: { exists 0, rounds, k. split_and!; try done; [by apply progress_refl|lia|lia]. }
  destruct (Scheduler.has_runnable_tasks (Kernel.scheduler k)) eqn:Er.
  2: { exists 0, rounds, k. split_and!; try done; [by apply progress_refl|lia|right].
       unfold Scheduler.has_runnable_tasks in Er. by apply negb_false_iff, bool_decide_eq_true in Er. }
  destruct (dequeue_runnable (Kernel.scheduler k)) as (id & sc & Ed & Hid);
    [apply (hr_sched _ _ Hh)|done|]. rewrite Ed.
  assert (progress (ticks - tc) 0 k (k <| Kernel.scheduler := sc |>)) as P0.
  { apply (sched_step_ok _ SchedOp.Dequeue); try done; simpl; [by rewrite Ed|].
    pose proof (dequeue_config (Kernel.scheduler k)) as E. by rewrite Ed in E. }
  set (k1 := k <| Kernel.scheduler := sc |>) in *.
  assert (quantum_of k1 = quantum_of k) as Hq1 by apply P0.
  unfold add_u64, checked_add. rewrite (proj2 (N.leb_le _ _)) by lia. cbn [expect mbind outcome_bind].
  change (SchedulerConfig.quantum_ticks (Scheduler.config (Kernel.scheduler k1)))
    with (quantum_of k1). rewrite Hq1.
  destruct (run_slice_ok (S (N.to_nat ticks)) id (quantum_of k) ticks 0 tc k1)
    as (u1 & k2 & E2 & P2 & Hpos); [lia|done|lia|lia| | |].
  { pose proof (pg_headroom _ _ _ _ P0). by rewrite N.sub_0_r in *. }
  { pose proof (pg_cpu _ _ _ _ P0). by rewrite N.sub_0_r in *. }
  rewrite E2. cbn [mbind outcome_bind].
  set (k3 := if _ && _ then _ else k2).
  assert (progress (ticks - tc) (0 + u1) k k2) as P02
    by (eapply progress_trans; [exact P0|]; by rewrite N.sub_0_r).
  rewrite N.add_0_l in P02.
  assert (progress (ticks - tc - u1) 0 k2 k3) as P3.
  { pose proof (pg_headroom _ _ _ _ P02) as Hh2. pose proof (pg_cpu _ _ _ _ P02) as Hc2.
    unfold k3. destruct (_ && _); [|by apply progress_refl].
    apply (sched_step_ok _ SchedOp.Preempt); try done. apply preempt_config. }
  assert (progress (ticks - tc) (u1 + 0) k k3) as P03 by by eapply progress_trans.
  rewrite N.add_0_r in P03. destruct P03 as [U3 H3 C3 S3 L3].
  assert (0 < u1) as Hu1.
  { apply Hpos; [done|done|]. unfold Kernel.is_runnable. by rewrite bool_decide_eq_true. }
  rewrite <- N.sub_add_distr in H3, C3.
  destruct (IH (tc + u1) (rounds + 1) k3) as (u4 & r4 & k4 & E4 & P4 & R4 & D4);
    [lia|done|lia|lia|done|done|by rewrite (sf_quantum _ _ S3)|].
  exists (u1 + u4), r4, k4. split_and!; [exact E4| |lia|lia|].
  - eapply progress_trans; [by split; [..|exact L3]; rewrite ?N.sub_add_distr in *|].
    by rewrite <- N.sub_add_distr.
  - rewrite N.add_assoc. exact D4.
Qed.
End loops.

Module RunSafety.
Section theorems.
Context `{UuidFormat} `{DefaultHasher}.

(** C5: running the kernel terminates and keeps its promise: from any reachable
    single-core state, with a positive quantum and room for [n] more ticks in the 64-bit
    counters, [run_for_ticks] returns; the clock has moved by the ticks it used, at most
    [n], each round used at least one; and it used fewer than [n] only because the run
    queue became empty. *)
Theorem run_for_ticks_terminates `{HashOrder} k0 k n :
  initial k0 → kreach any_call k0 k →
  Kernel.smp k = None → 0 < quantum_of k → 0 < Kernel.nanos_per_tick k →
  elapsed k + n < u64_max → (elapsed k + n) * Kernel.nanos_per_tick k ≤ u64_max → cpu_room n k →
  ∃ used rounds k', Kernel.run_for_ticks n k = Return (rounds, k') ∧
    elapsed k' = elapsed k + used ∧ used ≤ n ∧ rounds ≤ used ∧
    (used = n ∨ Scheduler.run_queue (Kernel.scheduler k') = []).
Proof.
  intros Hi Hr Hsmp Hq Hn Ht Hm Hc. pose proof (reach_time k0 k any_call Hi Hr) as [_ Hs].
  pose proof (reach_sched k0 k any_call Hi Hr) as Hk. unfold Kernel.run_for_ticks. rewrite Hsmp.
  destruct (run_loop_ok (S (N.to_nat n)) n 0 0 k) as (used & rounds & k' & E & [P1 P2 P3 P4 P5] & R & D);
    rewrite ?N.sub_0_r in *; try lia; [by split|done|].
  exists used, rounds, k'. split_and!; try done. lia.
Qed.
End theorems.

#[local] Existing Instance sample_format.
#[local] Existing Instance sample_hasher.

Lemma run_for_ticks_terminates_witness :
  let k := sample_state two_tasks in
  ∃ used rounds k', @Kernel.run_for_ticks canonical_order _ 25 k = Return (rounds, k') ∧
    elapsed k' = elapsed k + used ∧ used ≤ 25 ∧ rounds ≤ used ∧
    (used = 25 ∨ Scheduler.run_queue (Kernel.scheduler k') = []).
Proof.
  intros k. assert (cpu_room 25 k) as Hc.
  { apply (bool_decide_eq_true_1 (map_Forall (λ _ i, cpu_used i + 25 ≤ u64_max)
      (Kernel.identity_table k))). by vm_compute. }
  refine (@run_for_ticks_terminates sample_format sample_hasher canonical_order sample_kernel k 25
    sample_initial (sample_reach _) _ _ _ _ _ Hc); vm_compute; done || discriminate.
Defined.

(** One task, and the kernel run for fewer ticks than its quantum of ten. *)
Definition lonely : Kernel.t :=
  sample_state [KOp.Spawn (drawn 1) (TaskDescriptor.new "a")].

(** A slice cut short strands its task: running the kernel for three ticks and then
    for a hundred gives the only task no time in the second run.  The task is still
    runnable, but the first run left it as the current task without putting it back into
    the run queue, and the second one finds the queue empty. *)
Theorem interrupted_slice_strands_task :
  match @Kernel.run_for_ticks canonical_order _ 3 lonely with
  | Return (rounds1, k1) =>
      match @Kernel.run_for_ticks canonical_order _ 100 k1 with
      | Return (rounds2, k2) =>
          rounds1 = 1 ∧ rounds2 = 0 ∧ elapsed k1 = 3 ∧ elapsed k2 = 3 ∧
          Scheduler.task_state (TaskId.mk 1) (Kernel.scheduler k2) = Some TaskState.Runnable ∧
          Scheduler.run_queue (Kernel.scheduler k2) = []
      | _ => False
      end
  | _ => False
  end.
Proof. vm_compute. split_and!; reflexivity. Qed.
End RunSafety.
