(* ===== verification/SyscallProps.v ===== *)
(** * The system-call boundary

    The audit log of the gate is a complete transcript of the calls that passed it,
    proved against the interface [KernelApi] for any kernel; what the memory gate and
    the trap of user tasks record; and two consequences of how the kernel charges and
    inherits budgets. *)

From S2P Require Import Prelude CoreTypes Debug Resources Identity Ipc Policy Queue AuditLogs.
From S2P Require Import Faults Sched SchedProps Smp AddrSpace SyscallGate Kernel UserTask.
From S2P Require Import KernelSpec KernelProps BudgetProps MsgProps.
Open Scope string_scope.
Open Scope list_scope.
Open Scope N_scope.

(** ** The gate, for any kernel *)
Definition is_memory_call (c : Syscall.t) : bool :=
  match c with
  | Syscall.CreateAddressSpace | Syscall.AllocateRegion _ _ _ _ | Syscall.AccessRegion _ _ => true
  | _ => false
  end.

(** The event that closes a call, and the two events of a call. *)
Definition closing {E T} (debug : E → string) (caller : ExecutionId.t) (name : string) (ts : N)
    (r : result T E) : SyscallEvent.t :=
  match r with
  | Ok _ => SyscallEvent.Completed caller name ts
  | Err e => SyscallEvent.Rejected caller name (debug e) ts
  end.
Definition transcript {E T} (debug : E → string) (caller : ExecutionId.t) (name : string) (ts : N)
    (r : result T E) : list SyscallEvent.t :=
  [SyscallEvent.Invoked caller name ts; closing debug caller name ts r].

(** A call made at the gate, with the time of the call. *)
Record call := mk_call {
  call_drawn : Drawn.t; call_caller : ExecutionId.t; call_syscall : Syscall.t; call_time : N
}.

Section any_kernel.
Context {K : Type} `{KernelApi K}.

Lemma execute_transcript d caller c ts (k : K) g :
  SyscallGate.execute d caller c ts k g =
  ('(r, k') ← SyscallGate.dispatch d c k;
   Return (r, k', g <| SyscallGate.events ::= λ l, l ++
     transcript Debug.kernel_error caller (SyscallGate.syscall_name c) ts r |>)).
Proof.
  unfold SyscallGate.execute, SyscallGate.record, transcript.
  destruct (SyscallGate.dispatch d c k) as [[[r|e] k']| |]; simpl; try done;
    unfold update_field; simpl; by rewrite <- app_assoc.
Qed.

(** A sequence of calls, their results, and the state of kernel and gate after it. *)
Fixpoint run_calls (calls : list call) (k : K) (g : SyscallGate.t)
    : outcome (list (result SyscallResult.t KernelError.t) * K * SyscallGate.t) :=
  match calls with
  | [] => Return ([], k, g)
  | c :: calls =>
      '(r, k, g) ← SyscallGate.execute (call_drawn c) (call_caller c) (call_syscall c)
                     (call_time c) k g;
      '(rs, k, g) ← run_calls calls k g;
      Return (r :: rs, k, g)
  end.
(** What a call means without a gate: the one method of [KernelApi] it names, with the
    arguments of the call, and what the method returns wrapped for the caller.  [Yield]
    touches nothing, and the memory calls are refused here. *)
Definition answer {E T} (wrap : T → SyscallResult.t) (m : outcome (result T E * K))
    : outcome (result SyscallResult.t E * K) :=
  match m with
  | Return (Ok x, k) => Return (Ok (wrap x), k)
  | Return (Err e, k) => Return (Err e, k)
  | Panic => Panic
  | Diverge => Diverge
  end.
Definition refused (name : string) : result SyscallResult.t KernelError.t :=
  Err (KernelError.InsufficientAuthority (name +:+ " requires SimulatedKernel access")).
Definition bare_call (d : Drawn.t) (c : Syscall.t) (k : K)
    : outcome (result SyscallResult.t KernelError.t * K) :=
  match c with
  | Syscall.SpawnTask t => answer SyscallResult.TaskHandle (api_spawn_task d t k)
  | Syscall.CreateChannel => answer SyscallResult.ChannelId (api_create_channel d k)
  | Syscall.Send ch m => answer (λ _ : unit, SyscallResult.Ok) (api_send_message ch m k)
  | Syscall.Recv ch => answer SyscallResult.Message (api_receive_message ch None k)
  | Syscall.Sleep t => answer (λ _ : unit, SyscallResult.Ok) (api_sleep t k)
  | Syscall.Now => answer SyscallResult.Instant (Return (Ok (api_now k), k))
  | Syscall.Yield => Return (Ok SyscallResult.Ok, k)
  | Syscall.Grant t x => answer (λ _ : unit, SyscallResult.Ok) (api_grant_capability t x k)
  | Syscall.RegisterService i ch =>
      answer (λ _ : unit, SyscallResult.Ok) (api_register_service i ch k)
  | Syscall.LookupService i =>
      answer SyscallResult.ChannelId (Return (api_lookup_service i k, k))
  | Syscall.CreateAddressSpace => Return (refused "CreateAddressSpace", k)
  | Syscall.AllocateRegion _ _ _ _ => Return (refused "AllocateRegion", k)
  | Syscall.AccessRegion _ _ => Return (refused "AccessRegion", k)
  end.
Lemma map_op_answer {E T} (wrap : T → SyscallResult.t) (m : outcome (result T E * K)) :
  SyscallGate.map_op wrap m = answer wrap m.
Proof. by destruct m as [[[] ?]| |]. Qed.
Lemma dispatch_is_bare_call d c (k : K) : SyscallGate.dispatch d c k = bare_call d c k.
Proof.
  destruct c; cbn [SyscallGate.dispatch bare_call]; rewrite ?map_op_answer; try done.
  by destruct (api_lookup_service _ k).
Qed.

(** The calls made directly on the kernel, without a gate. *)
Fixpoint run_bare (calls : list call) (k : K)
    : outcome (list (result SyscallResult.t KernelError.t) * K) :=
  match calls with
  | [] => Return ([], k)
  | c :: calls =>
      '(r, k) ← bare_call (call_drawn c) (call_syscall c) k;
      '(rs, k) ← run_bare calls k;
      Return (r :: rs, k)
  end.
Definition call_transcript (c : call) (r : result SyscallResult.t KernelError.t)
    : list SyscallEvent.t :=
  transcript Debug.kernel_error (call_caller c) (SyscallGate.syscall_name (call_syscall c))
    (call_time c) r.
End any_kernel.

(** ** What the trap does not touch *)
Section gate_frame.
Context `{HashOrder} `{UuidFormat}.

Lemma cancel_gate eid reason k :
  Kernel.syscall_gate (Kernel.cancel_identity eid reason k) = Kernel.syscall_gate k.
Proof.
  unfold Kernel.cancel_identity, Kernel.cancel_scheduled.
  destruct (list_find _ _) as [[i [id e]]|]; [|done]. by destruct (Kernel.smp _).
Qed.

Lemma consume_message_gate id o k x k' :
  Kernel.try_consume_message id o k = Return (x, k') →
  Kernel.syscall_gate k' = Kernel.syscall_gate k.
Proof.
  unfold Kernel.try_consume_message, Kernel.consume_unit.
  destruct (Kernel.task_to_identity k !! id) as [eid|]; [|by intros [= _ <-]].
  destruct (Kernel.is_identity_cancelled eid k); [by intros [= _ <-]|].
  destruct (Kernel.identity_table k !! eid) as [i|]; [|by intros [= _ <-]].
  destruct (IdentityMetadata.budget i) as [b|]; [|by intros [= _ <-]].
  destruct (ResourceBudget.message_count b); [|by intros [= _ <-]]. destruct (_ <=? _).
  - intros (a & _ & [= _ <-])%bind_Return. by rewrite cancel_gate.
  - by intros [= _ <-].
Qed.

Lemma send_gate c m k x k' :
  Kernel.send_message c m k = Return (x, k') → Kernel.syscall_gate k' = Kernel.syscall_gate k.
Proof.
  unfold Kernel.send_message, Kernel.charge_source.
  destruct (Kernel.check_send_access c m k); [|by intros [= _ <-]].
  destruct (Kernel.check_schema m k); [|by intros [= _ <-]].
  intros [(u & k1 & H1 & H2)|(e & H1 & _)]%try_bind_Return;
    [|destruct (MessageEnvelope.source m); [by eapply consume_message_gate|by injection H1 as _ <-]].
  assert (Kernel.syscall_gate k1 = Kernel.syscall_gate k) as <-
    by (destruct (MessageEnvelope.source m); [by eapply consume_message_gate|by injection H1 as _ <-]).
  apply bind_Return in H2 as ([cut k2] & H2 & H3).
  assert (Kernel.syscall_gate k2 = Kernel.syscall_gate k1) as <-.
  { unfold Kernel.inject_send_faults in H2. destruct (Kernel.fault_injector k1); [|by injection H2 as _ <-].
    destruct (FaultInjector.should_crash_on_send _); [by injection H2 as _ <-|].
    destruct (FaultInjector.should_drop_message _ _ _) as [[] i]; [by injection H2 as _ <-|].
    destruct (FaultInjector.get_message_delay i) as [[dl|] i']; [|by injection H2 as _ <-].
    apply bind_Return in H2 as (due_at & _ & [= _ <-]). done. }
  destruct cut; [by injection H3 as _ <-|]. unfold Kernel.deliver in H3.
  destruct (Kernel.channels k2 !! c) as [ch|]; [|by injection H3 as _ <-].
  destruct (MessageQueue.push m (Channel.queue ch)) as [[] q]; [|by injection H3 as _ <-].
  apply bind_Return in H3 as (l & _ & [= _ <-]). done.
Qed.

Lemma receive_gate c t k x k' :
  Kernel.receive_message c t k = Return (x, k') → Kernel.syscall_gate k' = Kernel.syscall_gate k.
Proof.
  unfold Kernel.receive_message, Kernel.charge_receiver.
  destruct (Kernel.check_receive_access c k); [|by intros [= _ <-]].
  intros [(u & k1 & H1 & H2)|(e & H1 & _)]%try_bind_Return;
    [|destruct (Kernel.current_receive_task k); [by eapply consume_message_gate|by injection H1 as _ <-]].
  assert (Kernel.syscall_gate k1 = Kernel.syscall_gate k) as <-
    by (destruct (Kernel.current_receive_task k); [by eapply consume_message_gate|by injection H1 as _ <-]).
  assert (∀ x, Kernel.take_message c k1 = Return (x, k') →
    Kernel.syscall_gate k' = Kernel.syscall_gate k1) as Ht.
  { intros y. unfold Kernel.take_message.
    destruct (Kernel.channels k1 !! c) as [ch|]; [|by intros [= _ <-]].
    destruct (MessageQueue.pop (Channel.queue ch)) as [[m|] q]; [|by intros [= _ <-]].
    simpl. destruct (Kernel.fault_injector k1); [|by intros [= _ <-]].
    intros (i & _ & [= _ <-])%bind_Return. done. }
  destruct (Kernel.fault_injector k1); [|by eapply Ht].
  destruct (FaultInjector.should_crash_on_recv _); [by injection H2 as _ <-|by eapply Ht].
Qed.
End gate_frame.

(** The three calls the trap supports. *)
Definition trap_supports (c : Syscall.t) : bool :=
  match c with Syscall.CreateChannel | Syscall.Send _ _ | Syscall.Recv _ => true | _ => false end.

Lemma audited_call_transcript caller name ts body k r k' :
  (∀ k x k', body k = Return (x, k') → Kernel.syscall_gate k' = Kernel.syscall_gate k) →
  UserTask.audited_call caller name ts body k = Return (r, k') →
  SyscallGate.events (Kernel.syscall_gate k')
    = SyscallGate.events (Kernel.syscall_gate k) ++ transcript Debug.kernel_error caller name ts r.
Proof.
  intros Hb. unfold UserTask.audited_call. intros ([x k1] & H1%Hb & H2)%bind_Return.
  unfold transcript, closing.
  destruct x; injection H2 as <- <-; simpl; rewrite H1; simpl; by rewrite <- app_assoc.
Qed.

Lemma map_op_inv {K E T U} (f : T → U) (m : outcome (result T E * K)) x k :
  SyscallGate.map_op f m = Return (x, k) → ∃ y, m = Return (y, k).
Proof. unfold SyscallGate.map_op. intros ([y k1] & -> & [= _ <-])%bind_Return. eauto. Qed.

(** ** Theorems *)
Module SyscallSafety.

(** C33: the audit log of [SyscallGate::execute] is a complete transcript, for any kernel
    behind the interface [KernelApi]: after a sequence of calls the log has grown by exactly
    one [Invoked] and one matching [Completed] or [Rejected] event per call, in call order,
    and the gate is transparent: results and kernel state are those of the [KernelApi] method
    that each call names, called directly with the same arguments; [Yield] leaves the
    kernel alone and the memory calls are refused.  (The other entry of the gate,
    [execute_with_memory], does not close every call: [memory_gate_leaves_call_open].) *)
Theorem gate_log_is_complete_transcript {K} `{KernelApi K} calls (k : K) g :
  run_calls calls k g =
  ('(rs, k') ← run_bare calls k;
   Return (rs, k', g <| SyscallGate.events ::= λ l,
                      l ++ concat (zip_with call_transcript calls rs) |>)).
Proof.
  revert k g. induction calls as [|c calls IH]; intros k g; simpl.
  { destruct g as [l]. unfold update_field. simpl. by rewrite app_nil_r. }
  rewrite execute_transcript, dispatch_is_bare_call.
  destruct (bare_call (call_drawn c) (call_syscall c) k) as [[r k1]| |]; simpl; try done.
  rewrite IH. destruct (run_bare calls k1) as [[rs k2]| |]; simpl; try done.
  unfold update_field. simpl. by rewrite <- app_assoc.
Qed.

(** The gate for memory calls closes the record of every memory call, but a call of
    any other kind, although recorded as invoked and answered with an error, gets neither
    a [Completed] nor a [Rejected] event. *)
Theorem memory_gate_leaves_call_open {K} `{KernelApi K} `{MemoryOps K} `{UuidFormat} d caller c ts (k : K) g :
  match SyscallGate.execute_with_memory d caller c ts k g with
  | Return (r, k', g') =>
      SyscallGate.events g' = SyscallGate.events g ++
        (if is_memory_call c
         then transcript Debug.memory_error caller (SyscallGate.syscall_name c) ts r
         else [SyscallEvent.Invoked caller (SyscallGate.syscall_name c) ts]) ∧
      (is_memory_call c = false → is_err r = true ∧ k' = k)
  | _ => is_memory_call c = true
  end.
Proof.
  unfold SyscallGate.execute_with_memory, SyscallGate.record, transcript, closing.
  destruct c; simpl; try (by split);
    match goal with |- context [SyscallGate.map_op ?f ?m] =>
      destruct (SyscallGate.map_op f m) as [[[r|e] k']| |] end; simpl; try done;
    (split; [by rewrite <- app_assoc|done]).
Qed.

(** The trap of user tasks audits what it executes and executes nothing else: a
    supported call leaves exactly its two events in the log; any other call is refused,
    adds one [Rejected] event and changes nothing else in the kernel. *)
Theorem trap_audits_every_call `{HashOrder} `{UuidFormat} `{DefaultHasher} d caller c k :
  match UserTask.default_trap d caller c k with
  | Return (r, k') =>
      if trap_supports c
      then SyscallGate.events (Kernel.syscall_gate k')
             = SyscallGate.events (Kernel.syscall_gate k) ++
               transcript Debug.kernel_error caller (SyscallGate.syscall_name c)
                 (Kernel.now_nanos k) r
      else is_err r = true ∧
           k' = k <| Kernel.syscall_gate ::= SyscallGate.record_rejected caller (syscall_debug c)
                       "Not supported in default_trap" (Kernel.now_nanos k) |>
  | Panic | Diverge => trap_supports c = true
  end.
Proof.
  destruct (UserTask.default_trap d caller c k) as [[r k']| |] eqn:E;
    destruct c; simpl in E; try done; try (injection E as <- <-; by split); simpl;
    (eapply audited_call_transcript; [|exact E]); intros k1 x k2.
  - by intros [= _ <-].
  - intros [y Hy]%map_op_inv. by eapply send_gate.
  - intros [y Hy]%map_op_inv. by eapply receive_gate.
Qed.
End SyscallSafety.
