(* ===== verification/ExecProps.v ===== *)
(** * Properties of executables

    The parser of [Executable.v] accepts exactly the encodings of the PEX format, the
    validator then only checks alignment, test programs are accepted, rejected files
    leave the kernel alone, and a section is never mapped with more rights than its
    header asks for. *)

From S2P Require Import Prelude CoreTypes Debug Resources Identity Ipc Queue AddrSpace.
From S2P Require Import SyscallGate Kernel UserTask Executable.
Open Scope string_scope.
Open Scope list_scope.
Open Scope N_scope.

(** ** Little-endian words *)
Lemma to_le_length n x : length (to_le n x) = n.
Proof. revert x. induction n as [|n IH]; intros x; simpl; [done|]. by rewrite IH. Qed.

Lemma from_le_to_le n x : x < 256 ^ N.of_nat n → from_le (to_le n x) = x.
Proof.
  revert x. induction n as [|n IH]; intros x Hx; simpl; [simpl in Hx; lia|].
  rewrite IH.
  - pose proof (N.div_mod x 256). lia.
  - rewrite Nat2N.inj_succ, N.pow_succ_r' in Hx. apply N.Div0.div_lt_upper_bound. lia.
Qed.

Lemma from_le_bound l : Forall byte_ok l → from_le l < 256 ^ N.of_nat (length l).
Proof.
  induction 1 as [|b l Hb Hl IH]; simpl; [lia|].
  rewrite Nat2N.inj_succ, N.pow_succ_r'. unfold byte_ok in Hb. lia.
Qed.

Lemma to_le_from_le n l : Forall byte_ok l → length l = n → to_le n (from_le l) = l.
Proof.
  intros Hl <-. induction Hl as [|b l Hb Hl IH]; simpl; [done|]. unfold byte_ok in Hb.
  rewrite N.mul_comm, N.Div0.mod_add, N.mod_small, N.div_add, N.div_small by lia.
  by rewrite N.add_0_l, IH.
Qed.

(** Reading a word out of the middle of a file. *)
Lemma read_bytes_at pre l post :
  read_bytes (length l) (len pre) (pre ++ l ++ post) = Return l.
Proof.
  revert pre. induction l as [|b l IH]; intros pre; simpl; [done|].
  unfold index. replace (N.to_nat (len pre)) with (length pre) by (unfold len; lia).
  rewrite lookup_app_r, Nat.sub_diag by lia. simpl.
  specialize (IH (pre ++ [b])). rewrite <- app_assoc in IH. simpl in IH.
  replace (len pre + 1) with (len (pre ++ [b])); [by rewrite IH|].
  unfold len. rewrite length_app. simpl. lia.
Qed.

Lemma read_le_at n offset pre l post :
  length l = n → offset = len pre → read_le n offset (pre ++ l ++ post) = Return (from_le l).
Proof. intros <- ->. unfold read_le. by rewrite read_bytes_at. Qed.

Lemma read_le_word n x offset data pre post :
  x < 256 ^ N.of_nat n → data = pre ++ to_le n x ++ post → offset = len pre →
  read_le n offset data = Return x.
Proof.
  intros Hx -> Ho. rewrite (read_le_at n offset) by (done || apply to_le_length).
  by rewrite from_le_to_le.
Qed.

Lemma slice_at offset pre l post :
  offset = len pre → slice offset (len l) (pre ++ l ++ post) = l.
Proof.
  intros ->. unfold slice, len. rewrite !Nat2N.id, drop_app_length, take_app_length. done.
Qed.

Lemma len_app {A} (l k : list A) : len (l ++ k) = len l + len k.
Proof. unfold len. rewrite length_app. lia. Qed.

Lemma len_to_le n x : len (to_le n x) = N.of_nat n.
Proof. unfold len. by rewrite to_le_length. Qed.

(** A list of at least [n] elements begins with [n] of them. *)
Lemma split_prefix {A} (n : nat) (l : list A) :
  (n ≤ length l)%nat → ∃ a b, l = a ++ b ∧ length a = n.
Proof.
  intros Hn. exists (take n l), (drop n l). split; [by rewrite take_drop|].
  rewrite length_take. lia.
Qed.

(** ** The format *)
Definition section_bytes (w : N) (s : PexSection.t) : list N :=
  to_le 4 (SectionType.to_u32 (PexSection.section_type s)) ++ to_le 8 (PexSection.size s)
  ++ to_le 4 w ++ PexSection.data s.

(** [w] is a permission word of the section [s]; its upper bits are ignored. *)
Record section_ok (w : N) (s : PexSection.t) : Prop := {
  so_size : PexSection.size s < 2 ^ 64;
  so_word : w < 2 ^ 32;
  so_perms : SectionPerms.from_u32 w = PexSection.permissions s;
  so_data : if bool_decide (PexSection.section_type s = SectionType.Bss)
            then PexSection.data s = [] else len (PexSection.data s) = PexSection.size s
}.

(** The bytes of the sections, for some permission words. *)
Inductive sections_bytes : list PexSection.t → list N → Prop :=
| sb_nil : sections_bytes [] []
| sb_cons w s ss l :
    section_ok w s → sections_bytes ss l → sections_bytes (s :: ss) (section_bytes w s ++ l).

Definition header (e : Executable.t) : list N :=
  to_le 4 Executable.PEX_MAGIC ++ to_le 4 Executable.PEX_VERSION
  ++ to_le 8 (Executable.entry_point e) ++ to_le 4 (len (Executable.sections e)).

(** [data] is an encoding of [e], possibly followed by more bytes. *)
Definition encodes (e : Executable.t) (data : list N) : Prop :=
  ∃ body rest,
    0 < Executable.entry_point e < 2 ^ 64 ∧ len (Executable.sections e) < 2 ^ 32 ∧
    sections_bytes (Executable.sections e) body ∧
    data = header e ++ body ++ rest.

(** A Rust slice holds at most [isize::MAX] bytes. *)
Definition isize_max : N := 2 ^ 63 - 1.

Lemma section_type_iff val st :
  section_type_from_u32 val = Ok st ↔ val = SectionType.to_u32 st.
Proof.
  unfold section_type_from_u32.
  destruct (N.eqb_spec val 1), (N.eqb_spec val 2), (N.eqb_spec val 3), st; simpl; naive_solver lia.
Qed.

(** ** Parsing one section *)
Lemma parse_contents_complete data pre s post :
  data = pre ++ PexSection.data s ++ post → len data ≤ isize_max →
  (if bool_decide (PexSection.section_type s = SectionType.Bss)
   then PexSection.data s = [] else len (PexSection.data s) = PexSection.size s) →
  Executable.parse_contents data (len pre) (PexSection.section_type s) (PexSection.size s)
    = Return (Ok (PexSection.data s, len (pre ++ PexSection.data s))).
Proof.
  intros Ed Hlen Hd. unfold Executable.parse_contents. case_bool_decide.
  { rewrite Hd, app_nil_r. done. }
  rewrite <- Hd, len_app. rewrite Ed, !len_app in Hlen. unfold isize_max in Hlen.
  unfold add_u64, checked_add, u64_max. rewrite (proj2 (N.leb_le _ _)) by lia. simpl.
  rewrite Ed, !len_app. destruct (N.ltb_spec (len pre + (len (PexSection.data s) + len post))
    (len pre + len (PexSection.data s))); [lia|].
  by rewrite slice_at.
Qed.

Lemma parse_section_complete pre w s post :
  section_ok w s → len (pre ++ section_bytes w s ++ post) ≤ isize_max →
  Executable.parse_section (pre ++ section_bytes w s ++ post) (len pre)
    = Return (Ok (s, len (pre ++ section_bytes w s))).
Proof.
  intros [Hs Hw Hp Hd] Hlen. unfold Executable.parse_section.
  set (data := pre ++ section_bytes w s ++ post) in *.
  set (a := to_le 4 (SectionType.to_u32 (PexSection.section_type s))).
  set (b := to_le 8 (PexSection.size s)). set (c := to_le 4 w).
  assert (data = pre ++ a ++ b ++ c ++ PexSection.data s ++ post) as Ed.
  { unfold data, section_bytes. by rewrite <- !app_assoc. }
  assert (len a = 4 ∧ len b = 8 ∧ len c = 4) as (La & Lb & Lc)
    by (unfold a, b, c; by rewrite !len_to_le).
  destruct (N.ltb_spec (len data) (len pre + 16)) as [Hlt|_].
  { rewrite Ed, !len_app in Hlt. lia. }
  rewrite (read_le_word 4 (SectionType.to_u32 (PexSection.section_type s)) (len pre) data pre
    (b ++ c ++ PexSection.data s ++ post)); [|by destruct (PexSection.section_type s)|exact Ed|done].
  cbn [mbind outcome_bind].
  rewrite (proj2 (section_type_iff _ (PexSection.section_type s))) by done.
  rewrite (read_le_word 8 (PexSection.size s) (len pre + 4) data (pre ++ a) (c ++ PexSection.data s ++ post));
    [|done|by rewrite Ed, <- !app_assoc|by rewrite len_app, La].
  cbn [mbind outcome_bind].
  rewrite (read_le_word 4 w (len pre + 12) data (pre ++ a ++ b) (PexSection.data s ++ post));
    [|done|by rewrite Ed, <- !app_assoc|rewrite !len_app, La, Lb; lia].
  cbn [mbind outcome_bind].
  replace (len pre + 16) with (len (pre ++ a ++ b ++ c)) by (rewrite !len_app; lia).
  rewrite (parse_contents_complete data (pre ++ a ++ b ++ c) s post);
    [|by rewrite Ed, <- !app_assoc|done|done].
  simpl. rewrite Hp. unfold section_bytes. rewrite <- !app_assoc. by destruct s.
Qed.

Lemma Forall_byte_app a b : Forall byte_ok (a ++ b) → Forall byte_ok a ∧ Forall byte_ok b.
Proof. apply Forall_app. Qed.

(** A word that was read is the encoding of its value. *)
Lemma word_of n l : Forall byte_ok l → length l = n → l = to_le n (from_le l) ∧
  from_le l < 256 ^ N.of_nat n.
Proof. intros Hl <-. split; [by rewrite to_le_from_le|by apply from_le_bound]. Qed.

Lemma parse_contents_sound pre tl st size d off :
  Executable.parse_contents (pre ++ tl) (len pre) st size = Return (Ok (d, off)) →
  (if bool_decide (st = SectionType.Bss) then d = [] else len d = size) ∧
  ∃ post, tl = d ++ post ∧ off = len (pre ++ d).
Proof.
  unfold Executable.parse_contents. case_bool_decide.
  { intros [= <- <-]. split; [done|]. exists tl. by rewrite app_nil_r. }
  intros (last & [-> _]%add_u64_Return & Hl)%bind_Return.
  destruct (N.ltb_spec (len (pre ++ tl)) (len pre + size)) as [|Hge]; [done|].
  injection Hl as <- <-. rewrite len_app in Hge. unfold slice, len in *.
  rewrite Nat2N.id, drop_app_length, length_app, length_take. split; [lia|].
  exists (drop (N.to_nat size) tl). split; [by rewrite take_drop|lia].
Qed.

Lemma parse_section_sound pre tl s off :
  Forall byte_ok tl → Executable.parse_section (pre ++ tl) (len pre) = Return (Ok (s, off)) →
  ∃ w post, section_ok w s ∧ tl = section_bytes w s ++ post ∧ off = len (pre ++ section_bytes w s).
Proof.
  intros Hb. unfold Executable.parse_section.
  destruct (N.ltb_spec (len (pre ++ tl)) (len pre + 16)) as [|Hge]; [done|].
  rewrite len_app in Hge. unfold len in Hge.
  destruct (split_prefix 4 tl) as (a & t1 & -> & La); [lia|].
  rewrite length_app in Hge. destruct (split_prefix 8 t1) as (b & t2 & -> & Lb); [lia|].
  rewrite length_app in Hge. destruct (split_prefix 4 t2) as (c & tl & -> & Lc); [lia|].
  apply Forall_byte_app in Hb as [Ha Hb]. apply Forall_byte_app in Hb as [Hb Hc].
  apply Forall_byte_app in Hc as [Hc Hd].
  destruct (word_of 4 a Ha La) as [Ea Ba]. destruct (word_of 8 b Hb Lb) as [Eb Bb].
  destruct (word_of 4 c Hc Lc) as [Ec Bc].
  rewrite (read_le_at 4 (len pre)) by done. cbn [mbind outcome_bind].
  destruct (section_type_from_u32 (from_le a)) as [st|] eqn:Est; [|done].
  apply section_type_iff in Est.
  replace (pre ++ a ++ b ++ c ++ tl) with ((pre ++ a) ++ b ++ c ++ tl) by by rewrite <- !app_assoc.
  rewrite (read_le_at 8 (len pre + 4)); [|done|rewrite len_app; unfold len; lia].
  cbn [mbind outcome_bind].
  replace ((pre ++ a) ++ b ++ c ++ tl) with ((pre ++ a ++ b) ++ c ++ tl) by by rewrite <- !app_assoc.
  rewrite (read_le_at 4 (len pre + 12)); [|done|rewrite !len_app; unfold len; lia].
  cbn [mbind outcome_bind].
  replace ((pre ++ a ++ b) ++ c ++ tl) with ((pre ++ a ++ b ++ c) ++ tl) by by rewrite <- !app_assoc.
  replace (len pre + 16) with (len (pre ++ a ++ b ++ c)) by (rewrite !len_app; unfold len; lia).
  destruct (Executable.parse_contents _ _ st _) as [[[d off']|]| |] eqn:Ed; cbn [ok_bind]; try done.
  intros [= <- <-]. apply parse_contents_sound in Ed as (Hsz & post & -> & ->).
  exists (from_le c), post. rewrite Est in Ea. split; [by split|].
  unfold section_bytes. cbn [PexSection.section_type PexSection.size PexSection.data].
  rewrite <- Ea, <- Eb, <- Ec. by rewrite <- !app_assoc.
Qed.

(** ** Parsing all sections *)
Lemma parse_sections_complete ss body pre post :
  sections_bytes ss body → len (pre ++ body ++ post) ≤ isize_max →
  Executable.parse_sections (length ss) (pre ++ body ++ post) (len pre) = Return (Ok ss).
Proof.
  intros Hss. revert pre. induction Hss as [|w s ss l Hs Hss IH]; intros pre Hlen; [done|].
  cbn [length Executable.parse_sections]. rewrite <- app_assoc in *.
  rewrite parse_section_complete by done. cbn [ok_bind].
  specialize (IH (pre ++ section_bytes w s)). rewrite <- !app_assoc in IH. by rewrite IH.
Qed.

Lemma parse_sections_sound n pre tl ss :
  Forall byte_ok tl → Executable.parse_sections n (pre ++ tl) (len pre) = Return (Ok ss) →
  length ss = n ∧ ∃ body rest, sections_bytes ss body ∧ tl = body ++ rest.
Proof.
  revert pre tl ss. induction n as [|n IH]; intros pre tl ss Hb; simpl.
  { intros [= <-]. split; [done|]. exists [], tl. split; [constructor|done]. }
  destruct (Executable.parse_section (pre ++ tl) (len pre)) as [[[s off]|]| |] eqn:Es; cbn [ok_bind]; try done.
  apply parse_section_sound in Es as (w & post & Hs & -> & ->); [|done].
  apply Forall_byte_app in Hb as [_ Hb]. rewrite app_assoc.
  destruct (Executable.parse_sections n _ _) as [[ss'|]| |] eqn:E; cbn [ok_bind]; try done.
  intros [= <-]. apply IH in E as (<- & body & rest & Hss & ->); [|done].
  split; [done|]. exists (section_bytes w s ++ body), rest.
  split; [by constructor|by rewrite app_assoc].
Qed.

Lemma parse_complete e body rest :
  0 < Executable.entry_point e < 2 ^ 64 → len (Executable.sections e) < 2 ^ 32 →
  sections_bytes (Executable.sections e) body → len (header e ++ body ++ rest) ≤ isize_max →
  Executable.parse (header e ++ body ++ rest) = Return (Ok e).
Proof.
  intros Hep Hn Hb Hlen. unfold Executable.parse.
  set (data := header e ++ body ++ rest) in *. set (m := to_le 4 Executable.PEX_MAGIC).
  set (v := to_le 4 Executable.PEX_VERSION). set (p := to_le 8 (Executable.entry_point e)).
  set (c := to_le 4 (len (Executable.sections e))).
  assert (data = m ++ v ++ p ++ c ++ body ++ rest) as Ed
    by (unfold data, header; by rewrite <- !app_assoc).
  assert (len m = 4 ∧ len v = 4 ∧ len p = 8 ∧ len c = 4) as (Lm & Lv & Lp & Lc)
    by (unfold m, v, p, c; by rewrite !len_to_le).
  assert (20 ≤ len data) as Hl by (rewrite Ed, !len_app; lia).
  rewrite (proj2 (N.ltb_ge (len data) 16)) by lia.
  rewrite (read_le_word 4 Executable.PEX_MAGIC 0 data [] (v ++ p ++ c ++ body ++ rest)) by done.
  cbn [mbind outcome_bind]. rewrite N.eqb_refl. cbn [negb].
  rewrite (read_le_word 4 Executable.PEX_VERSION 4 data m (p ++ c ++ body ++ rest)) by done.
  cbn [mbind outcome_bind]. rewrite N.eqb_refl. cbn [negb].
  rewrite (read_le_word 8 (Executable.entry_point e) 8 data (m ++ v) (c ++ body ++ rest));
    [|apply Hep|by rewrite Ed, <- !app_assoc|by rewrite len_app, Lm, Lv].
  cbn [mbind outcome_bind].
  rewrite (proj2 (N.eqb_neq _ _)), (proj2 (N.ltb_ge (len data) (16 + 4))) by lia.
  rewrite (read_le_word 4 (len (Executable.sections e)) 16 data (m ++ v ++ p) (body ++ rest));
    [|done|by rewrite Ed, <- !app_assoc|by rewrite !len_app, Lm, Lv, Lp].
  cbn [mbind outcome_bind]. unfold len at 1. rewrite Nat2N.id.
  replace 20 with (len (header e)) by (unfold header; by rewrite !len_app, !len_to_le).
  unfold data. rewrite parse_sections_complete by done. by destruct e.
Qed.

Lemma parse_sound data e :
  Forall byte_ok data → Executable.parse data = Return (Ok e) → encodes e data.
Proof.
  intros Hb. unfold Executable.parse.
  destruct (N.ltb_spec (len data) 16) as [|Hge]; [done|]. unfold len in Hge.
  destruct (split_prefix 4 data) as (m & t1 & -> & Lm); [lia|]. rewrite length_app in Hge.
  destruct (split_prefix 4 t1) as (v & t2 & -> & Lv); [lia|]. rewrite length_app in Hge.
  destruct (split_prefix 8 t2) as (p & t3 & -> & Lp); [lia|].
  apply Forall_byte_app in Hb as [Hm Hb]. apply Forall_byte_app in Hb as [Hv Hb].
  apply Forall_byte_app in Hb as [Hp Hb].
  destruct (word_of 4 m Hm Lm) as [Em _]. destruct (word_of 4 v Hv Lv) as [Ev _].
  destruct (word_of 8 p Hp Lp) as [Ep Bp].
  assert (read_le 4 0 (m ++ v ++ p ++ t3) = Return (from_le m)) as ->
    by by apply (read_le_at 4 0 [] m). cbn [mbind outcome_bind].
  destruct (N.eqb_spec (from_le m) Executable.PEX_MAGIC) as [Emag|]; [|done]. cbn [negb].
  rewrite (read_le_at 4 4 m) by (done || unfold len; lia). cbn [mbind outcome_bind].
  destruct (N.eqb_spec (from_le v) Executable.PEX_VERSION) as [Ever|]; [|done]. cbn [negb].
  replace (m ++ v ++ p ++ t3) with ((m ++ v) ++ p ++ t3) by by rewrite <- !app_assoc.
  rewrite (read_le_at 8 8 (m ++ v)) by (done || rewrite len_app; unfold len; lia).
  cbn [mbind outcome_bind]. destruct (N.eqb_spec (from_le p) 0) as [|Hnz]; [done|].
  destruct (N.ltb_spec (len ((m ++ v) ++ p ++ t3)) (16 + 4)) as [|H20]; [done|].
  unfold len in H20. rewrite !length_app in H20.
  destruct (split_prefix 4 t3) as (c & t4 & -> & Lc); [lia|].
  apply Forall_byte_app in Hb as [Hc Hb]. destruct (word_of 4 c Hc Lc) as [Ec Bc].
  replace ((m ++ v) ++ p ++ c ++ t4) with ((m ++ v ++ p) ++ c ++ t4) by by rewrite <- !app_assoc.
  rewrite (read_le_at 4 16 (m ++ v ++ p)) by (done || rewrite !len_app; unfold len; lia).
  cbn [mbind outcome_bind].
  replace ((m ++ v ++ p) ++ c ++ t4) with ((m ++ v ++ p ++ c) ++ t4) by by rewrite <- !app_assoc.
  replace 20 with (len (m ++ v ++ p ++ c)) by (rewrite !len_app; unfold len; lia).
  destruct (Executable.parse_sections _ _ _) as [[ss|]| |] eqn:Es; cbn [ok_bind]; try done.
  intros [= <-]. apply parse_sections_sound in Es as (Hn & body & rest & Hss & ->); [|done].
  exists body, rest. cbn [Executable.entry_point Executable.sections]. assert (len ss = from_le c) as Ess by (unfold len; lia).
  unfold header. cbn [Executable.entry_point Executable.sections].
  rewrite Ess. split_and!; [lia|done|done|done|].
  rewrite <- Emag, <- Ever, <- Em, <- Ev, <- Ep, <- Ec. by rewrite <- !app_assoc.
Qed.

(** ** Where the parser can panic *)
Lemma read_le_ok n offset data :
  offset + N.of_nat n ≤ len data → ∃ x, read_le n offset data = Return x.
Proof.
  intros Hn. unfold len in Hn.
  destruct (split_prefix (N.to_nat offset) data) as (pre & tl & -> & Lp); [lia|].
  rewrite length_app in Hn. destruct (split_prefix n tl) as (l & post & -> & Ll); [lia|].
  exists (from_le l). apply read_le_at; [done|unfold len; lia].
Qed.

(** The size word whose end lies beyond the largest address. *)
Definition overflowing_size (data : list N) : Prop :=
  ∃ offset size, offset ≤ len data ∧ read_le 8 (offset - 12) data = Return size ∧
                 u64_max < offset + size.

Definition fails_only_by_overflow {A E} (data : list N) (m : outcome (result A E)) : Prop :=
  match m with Return _ => True | Panic => overflowing_size data | Diverge => False end.

Lemma parse_section_failure data offset :
  fails_only_by_overflow data (Executable.parse_section data offset) ∧
  (∀ s off, Executable.parse_section data offset = Return (Ok (s, off)) → off ≤ len data).
Proof.
  unfold Executable.parse_section.
  destruct (N.ltb_spec (len data) (offset + 16)) as [|Hge]; [done|].
  destruct (read_le_ok 4 offset data) as [a Ea]; [lia|]. rewrite Ea. cbn [mbind outcome_bind].
  destruct (section_type_from_u32 a) as [st|]; [|done].
  destruct (read_le_ok 8 (offset + 4) data) as [sz Esz]; [lia|]. rewrite Esz.
  cbn [mbind outcome_bind].
  destruct (read_le_ok 4 (offset + 12) data) as [w Ew]; [lia|]. rewrite Ew.
  cbn [mbind outcome_bind]. unfold Executable.parse_contents. case_bool_decide.
  { split; [done|]. intros s off [= _ <-]. lia. }
  unfold add_u64, checked_add. destruct (N.leb_spec (offset + 16 + sz) u64_max) as [Hle|Hgt]; simpl.
  - destruct (N.ltb_spec (len data) (offset + 16 + sz)); [done|]. split; [done|].
    intros s off [= _ <-]. lia.
  - split; [|done]. exists (offset + 16), sz. split_and!; [lia| |done].
    by replace (offset + 16 - 12) with (offset + 4) by lia.
Qed.

Lemma parse_sections_failure n data offset :
  fails_only_by_overflow data (Executable.parse_sections n data offset).
Proof.
  revert offset. induction n as [|n IH]; intros offset; [done|]. cbn [Executable.parse_sections].
  destruct (parse_section_failure data offset) as [Hf _].
  destruct (Executable.parse_section data offset) as [[[s off]|]| |]; try done. cbn [ok_bind].
  specialize (IH off). by destruct (Executable.parse_sections n data off) as [[?|]| |].
Qed.

Lemma parse_failure data :
  fails_only_by_overflow data (Executable.parse data).
Proof.
  unfold Executable.parse. destruct (N.ltb_spec (len data) 16) as [|H16]; [done|].
  destruct (read_le_ok 4 0 data) as [m Em]; [lia|]. rewrite Em. cbn [mbind outcome_bind].
  destruct (negb (m =? Executable.PEX_MAGIC)); [done|].
  destruct (read_le_ok 4 4 data) as [v Ev]; [lia|]. rewrite Ev. cbn [mbind outcome_bind].
  destruct (negb (v =? Executable.PEX_VERSION)); [done|].
  destruct (read_le_ok 8 8 data) as [p Ep]; [lia|]. rewrite Ep. cbn [mbind outcome_bind].
  destruct (p =? 0); [done|]. destruct (N.ltb_spec (len data) (16 + 4)); [done|].
  destruct (read_le_ok 4 16 data) as [c Ec]; [lia|]. rewrite Ec. cbn [mbind outcome_bind].
  pose proof (parse_sections_failure (N.to_nat c) data 20) as Hf.
  by destruct (Executable.parse_sections (N.to_nat c) data 20) as [[?|]| |].
Qed.

(** The sections the parser can produce. *)
Lemma encodes_sections_ok e data :
  encodes e data → Forall (λ s, ∃ w, section_ok w s) (Executable.sections e).
Proof.
  intros (body & rest & _ & _ & Hb & _). induction Hb; constructor; eauto.
Qed.

Definition page_aligned (s : PexSection.t) : bool := PexSection.size s mod 4096 =? 0.

Lemma validate_section_aligned w s :
  section_ok w s →
  Executable.validate_section s
    = if page_aligned s then Ok tt else Err ExecutableError.InvalidAlignment.
Proof.
  intros [_ _ _ Hd]. unfold Executable.validate_section, page_aligned.
  destruct (bool_decide (PexSection.section_type s = SectionType.Bss)); simpl.
  - rewrite bool_decide_true by done. by destruct (_ =? 0).
  - rewrite Hd, N.eqb_refl. by destruct (_ =? 0).
Qed.

Lemma validate_sections_aligned l :
  Forall (λ s, ∃ w, section_ok w s) l →
  Executable.validate_sections l
    = if forallb page_aligned l then Ok tt else Err ExecutableError.InvalidAlignment.
Proof.
  induction 1 as [|s l [w Hs] Hl IH]; [done|]. cbn [Executable.validate_sections forallb].
  rewrite (validate_section_aligned w s Hs), IH. by destruct (page_aligned s).
Qed.

(** The program [create_test_program] writes. *)
Definition test_section (code : list N) : PexSection.t :=
  let size := div_ceil (len code) 4096 * 4096 in
  PexSection.mk SectionType.Text size SectionPerms.text (Executable.resize size code).
Definition test_executable (entry_point : N) (code : list N) : Executable.t :=
  Executable.mk entry_point [test_section code].

Lemma div_ceil_page n : n ≤ div_ceil n 4096 * 4096 < n + 4096.
Proof.
  unfold div_ceil. pose proof (N.Div0.div_mod n 4096).
  assert (n mod 4096 < 4096) by by apply N.mod_lt.
  generalize dependent (n mod 4096). generalize (n / 4096). intros q r Hn Hr.
  destruct (N.eqb_spec r 0); lia.
Qed.

Lemma test_section_ok code : len code ≤ 2 ^ 62 → section_ok 5 (test_section code).
Proof.
  intros Hc. pose proof (div_ceil_page (len code)) as Hd. unfold test_section.
  split; cbn [PexSection.size PexSection.permissions PexSection.section_type PexSection.data];
    [lia|lia|done|].
  rewrite bool_decide_false by done. unfold Executable.resize. rewrite len_app.
  unfold len in *. rewrite length_replicate. lia.
Qed.

Lemma test_program_bytes ep code :
  Executable.create_test_program ep code
    = header (test_executable ep code) ++ (section_bytes 5 (test_section code) ++ []) ++ [].
Proof.
  unfold Executable.create_test_program, header, section_bytes.
  rewrite !app_nil_r, <- !app_assoc. done.
Qed.

(** ** Theorems *)
Module ExecSpec.

(** C31: the parser accepts exactly the encodings of the documented format: on a file of
    bytes, [parse] returns an executable precisely when the file is its header followed
    by its sections (with some permission words) and possibly more bytes. *)
Theorem parse_accepts_exactly_encodings data e :
  Forall byte_ok data → len data ≤ isize_max →
  Executable.parse data = Return (Ok e) ↔ encodes e data.
Proof.
  intros Hb Hlen. split; [by apply parse_sound|].
  intros (body & rest & Hep & Hn & Hss & ->).
  by apply parse_complete.
Qed.

(** The parser's only way to crash: it always terminates, and it panics only on a file
    with a section whose declared size, added to the position of its contents, exceeds 64
    bits. *)
Theorem parse_panics_only_on_size_overflow data :
  match Executable.parse data with
  | Return _ => True
  | Panic => ∃ offset size, offset ≤ len data ∧ read_le 8 (offset - 12) data = Return size ∧
                            u64_max < offset + size
  | Diverge => False
  end.
Proof. apply parse_failure. Qed.

(** A file of 36 bytes that declares one text section of the largest size. *)
Definition hostile_file : list N :=
  to_le 4 Executable.PEX_MAGIC ++ to_le 4 Executable.PEX_VERSION ++ to_le 8 4096 ++ to_le 4 1
  ++ to_le 4 1 ++ to_le 8 u64_max ++ to_le 4 5.

(** Such a file exists: a well-formed header of 36 bytes makes the parser panic
    instead of returning [FileTooShort]. *)
Theorem hostile_file_panics : len hostile_file = 36 ∧ Executable.parse hostile_file = Panic.
Proof. split; vm_compute; reflexivity. Qed.

(** After parsing, validation is exactly the alignment check: the other three errors of
    [validate] cannot occur on a parsed executable. *)
Theorem validate_after_parse_is_alignment data e :
  Forall byte_ok data → Executable.parse data = Return (Ok e) →
  Executable.validate e
    = if forallb page_aligned (Executable.sections e) then Ok tt
      else Err ExecutableError.InvalidAlignment.
Proof.
  intros Hb He. apply parse_sound in He; [|done]. unfold Executable.validate.
  pose proof He as (_ & _ & Hep & _). rewrite (proj2 (N.eqb_neq _ _)) by lia.
  by eapply validate_sections_aligned, encodes_sections_ok.
Qed.

(** Mapping never widens a section's rights: the memory permissions of a section grant
    nothing its header does not ask for, and exactly what it asks for when it asks for
    read access. *)
Theorem section_perms_never_widened p :
  let m := SectionPerms.to_memory_perms p in
  (MemoryPerms.read m = true → SectionPerms.read p = true) ∧
  (MemoryPerms.write m = true → SectionPerms.write p = true) ∧
  (MemoryPerms.execute m = true → SectionPerms.execute p = true) ∧
  (SectionPerms.read p = true →
   m = MemoryPerms.mk true (SectionPerms.write p) (SectionPerms.execute p)).
Proof. by destruct p as [[] [] []]; vm_compute. Qed.

(** What the builder of test programs writes, the parser reads back and the validator
    accepts: one text section, readable and executable, of the code padded with zeros to
    whole pages. *)
Theorem test_program_roundtrip ep code :
  0 < ep < 2 ^ 64 → len code ≤ 2 ^ 62 →
  Executable.parse (Executable.create_test_program ep code)
    = Return (Ok (test_executable ep code)) ∧
  Executable.validate (test_executable ep code) = Ok tt.
Proof.
  intros Hep Hc. pose proof (test_section_ok code Hc) as Hs. split.
  - rewrite test_program_bytes. apply parse_complete; [done|done| |].
    + simpl. constructor; [done|constructor].
    + rewrite !app_nil_r. unfold header, section_bytes. rewrite !len_app, !len_to_le.
      pose proof (so_data _ _ Hs) as Hd. simpl in Hd. simpl. rewrite Hd.
      pose proof (div_ceil_page (len code)). unfold isize_max. lia.
  - unfold Executable.validate. simpl. rewrite (proj2 (N.eqb_neq ep 0)) by lia.
    rewrite (validate_section_aligned 5 _ Hs). unfold page_aligned. simpl.
    by rewrite N.Div0.mod_mul.
Qed.

(** On any kernel, a file that is not an encoding of an executable with page-aligned
    sections, and does not make the parser panic, is refused before the kernel is asked to
    do anything: the kernel state is unchanged. *)
Theorem rejected_file_leaves_kernel_alone {K} `{KernelApi K} d placeholder name data (k : K) :
  Forall byte_ok data → ¬ overflowing_size data →
  (¬ ∃ e, encodes e data ∧ forallb page_aligned (Executable.sections e) = true) →
  ∃ err, ExecutableLoader.load d placeholder name data k
           = Return (Err (LoadError.ParseError err), k).
Proof.
  intros Hb Hov Hno. unfold ExecutableLoader.load.
  pose proof (parse_failure data) as Hf.
  destruct (Executable.parse data) as [[e|err]| |] eqn:E; simpl in *; [|by eexists|done|done].
  apply parse_sound in E; [|done].
  destruct (Executable.validate e) as [u|err] eqn:Ev; [|by eexists]. destruct Hno. exists e.
  split; [done|]. unfold Executable.validate in Ev. destruct (_ =? 0); [done|].
  rewrite (validate_sections_aligned _ (encodes_sections_ok e data E)) in Ev.
  by destruct (forallb page_aligned (Executable.sections e)).
Qed.

(** ** Witnesses *)
Definition small_executable : Executable.t :=
  Executable.mk 4096 [PexSection.mk SectionType.Data 2 SectionPerms.data [7; 9];
                      PexSection.mk SectionType.Bss 4096 SectionPerms.data []].
Definition small_file : list N :=
  to_le 4 Executable.PEX_MAGIC ++ to_le 4 Executable.PEX_VERSION ++ to_le 8 4096 ++ to_le 4 2
  ++ to_le 4 2 ++ to_le 8 2 ++ to_le 4 3 ++ [7; 9]
  ++ to_le 4 3 ++ to_le 8 4096 ++ to_le 4 3 ++ [].

Lemma small_file_bytes : Forall byte_ok small_file.
Proof.
  apply (bool_decide_eq_true_1 (Forall (λ b, b < 256) small_file)). by vm_compute.
Qed.

Lemma parse_accepts_exactly_encodings_witness : encodes small_executable small_file.
Proof.
  apply (parse_accepts_exactly_encodings small_file small_executable);
    [apply small_file_bytes|by vm_compute|by vm_compute].
Defined.

Lemma validate_after_parse_is_alignment_witness :
  Executable.validate small_executable = Err ExecutableError.InvalidAlignment.
Proof.
  rewrite (validate_after_parse_is_alignment small_file small_executable);
    [by vm_compute|apply small_file_bytes|by vm_compute].
Defined.

Lemma test_program_roundtrip_witness :
  Executable.parse (Executable.create_test_program 4096 [1; 2; 3])
    = Return (Ok (test_executable 4096 [1; 2; 3])).
Proof. apply (test_program_roundtrip 4096 [1; 2; 3]); [lia|]. vm_compute. discriminate. Defined.

Lemma rejected_file_leaves_kernel_alone_witness :
  let k := Kernel.with_tick_resolution (Duration.from_nanos 1000) in
  ∃ err, @ExecutableLoader.load Kernel.t
           (@Kernel.kernel_api canonical_order sample_format sample_hasher)
           (Drawn.mk (TaskId.mk 1) (ExecutionId.mk 2) (ChannelId.mk 3) (AddressSpaceId.mk 4)
              (MemoryRegionId.mk 5)) (ExecutionId.mk 6) "prog" [1; 2; 3] k
         = Return (Err (LoadError.ParseError err), k).
Proof.
  intros k. apply (rejected_file_leaves_kernel_alone _ (ExecutionId.mk 6) "prog" [1; 2; 3] k).
  - repeat constructor.
  - intros (offset & size & Ho & Hr & _). unfold len in Ho. simpl in Ho.
    replace (offset - 12) with 0 in Hr by lia. vm_compute in Hr. discriminate.
  - intros (e & (body & rest & _ & _ & _ & E) & _). apply (f_equal len) in E.
    unfold header in E. rewrite !len_app, !len_to_le in E. unfold len in E. simpl in E. lia.
Defined.
End ExecSpec.
