(* ===== verification/Storage.v ===== *)
(** * The storage service

    [services_storage/src/object.rs], [transaction.rs], [journaled_storage.rs],
    [permissions.rs] and [migration.rs], with the schema types of
    [core_types/src/storage_schema.rs].  Storage is a set of versioned objects changed by
    transactions; the trait [TransactionalStorage] is the class of the same name, and the
    charge for an operation goes through the class [StorageBudget], which the kernel
    implements. *)

From S2P Require Import Prelude CoreTypes Debug AuditLogs Kernel.
Open Scope string_scope.
Open Scope list_scope.
Open Scope N_scope.

(** ** Schema identity ([core_types/src/storage_schema.rs]) *)

Module ObjectSchemaId.
(* core_types/src/storage_schema.rs:9-26 ObjectSchemaId *)
Record t := new { as_str : string }.
(* core_types/src/storage_schema.rs:28-32 Display for ObjectSchemaId *)
Definition display (s : t) : string := "Schema(" +:+ as_str s +:+ ")".
End ObjectSchemaId.

Module ObjectSchemaVersion.
(* core_types/src/storage_schema.rs:46-67 ObjectSchemaVersion *)
Record t := new { as_u32 : N }.
#[global] Instance eq_dec : EqDecision t.
Proof. solve_decision. Defined.
(* core_types/src/storage_schema.rs:69-72 ObjectSchemaVersion::next *)
Definition next (v : t) : outcome t :=
  if as_u32 v + 1 <? 2 ^ 32 then Return (new (as_u32 v + 1)) else Panic.
(* core_types/src/storage_schema.rs:75-79 Display for ObjectSchemaVersion *)
Definition display (v : t) : string := "v" +:+ pretty (as_u32 v).
(* core_types/src/storage_schema.rs:81-85 Default for ObjectSchemaVersion *)
Definition default : t := new 1.
End ObjectSchemaVersion.

Module MigrationLineage.
(* core_types/src/storage_schema.rs:87-99 MigrationLineage *)
Record t := mk {
  from_version : ObjectSchemaVersion.t;
  to_version : ObjectSchemaVersion.t;
  migrated_at : option N
}.
#[global] Instance rebuild_t : Rebuild t := λ l,
  mk (from_version l) (to_version l) (migrated_at l).
(* core_types/src/storage_schema.rs:102-108 MigrationLineage::new *)
Definition new (from to : ObjectSchemaVersion.t) : t := mk from to None.
(* core_types/src/storage_schema.rs:111-114 MigrationLineage::with_timestamp *)
Definition with_timestamp (timestamp : N) (l : t) : t := l <| migrated_at := Some timestamp |>.
End MigrationLineage.

(** ** Objects and versions ([object.rs]) *)

Module ObjectId.
(* services_storage/src/object.rs:12-31 ObjectId *)
Record t := from_uuid { as_uuid : Uuid }.
#[global] Instance eq_dec : EqDecision t.
Proof. solve_decision. Defined.
#[global] Program Instance countable : Countable t := inj_countable' as_uuid from_uuid _.
Next Obligation. by intros []. Qed.
(* services_storage/src/object.rs:39-43 Display for ObjectId *)
Definition display `{UuidFormat} (id : t) : string :=
  "Object(" +:+ uuid_to_string (as_uuid id) +:+ ")".
End ObjectId.

Module VersionId.
(* services_storage/src/object.rs:45-67 VersionId *)
Record t := from_uuid { as_uuid : Uuid }.
#[global] Instance eq_dec : EqDecision t.
Proof. solve_decision. Defined.
#[global] Program Instance countable : Countable t := inj_countable' as_uuid from_uuid _.
Next Obligation. by intros []. Qed.
(* services_storage/src/object.rs:75-79 Display for VersionId *)
Definition display `{UuidFormat} (id : t) : string :=
  "Version(" +:+ uuid_to_string (as_uuid id) +:+ ")".
End VersionId.

Module ObjectKind.
(* services_storage/src/object.rs:81-101 ObjectKind *)
Inductive t := Blob | Log | Map.
#[global] Instance eq_dec : EqDecision t.
Proof. solve_decision. Defined.
(* services_storage/src/object.rs:103-111 Display for ObjectKind *)
Definition display (k : t) : string :=
  match k with Blob => "Blob" | Log => "Log" | Map => "Map" end.
End ObjectKind.

(** ** Permissions ([permissions.rs]) *)

Module PrincipalId.
(* services_storage/src/permissions.rs:25-44 PrincipalId *)
Record t := from_uuid { as_uuid : Uuid }.
#[global] Instance eq_dec : EqDecision t.
Proof. solve_decision. Defined.
(* services_storage/src/permissions.rs:45-49 PrincipalId::system *)
Definition system : t := from_uuid 0.
(* services_storage/src/permissions.rs:58-66 Display for PrincipalId *)
Definition display `{UuidFormat} (p : t) : string :=
  if bool_decide (p = system) then "Principal(system)"
  else "Principal(" +:+ uuid_to_string (as_uuid p) +:+ ")".
End PrincipalId.

Module CapabilityKind.
(* services_storage/src/permissions.rs:68-90 CapabilityKind *)
Inductive t := Read | Write | Execute | Delete | Grant | Own.
#[global] Instance eq_dec : EqDecision t.
Proof. solve_decision. Defined.
(* services_storage/src/permissions.rs:92-103 Display for CapabilityKind *)
Definition display (k : t) : string :=
  match k with
  | Read => "Read"
  | Write => "Write"
  | Execute => "Execute"
  | Delete => "Delete"
  | Grant => "Grant"
  | Own => "Own"
  end.
End CapabilityKind.

Module Capability.
(* services_storage/src/permissions.rs:105-121 Capability *)
Record t := mk {
  object_id : ObjectId.t;
  kind : CapabilityKind.t;
  holder : PrincipalId.t;
  capability_id : Uuid
}.
(* services_storage/src/permissions.rs:124-132 Capability::new *)
Definition new (drawn : Uuid) (object_id : ObjectId.t) (kind : CapabilityKind.t)
    (holder : PrincipalId.t) : t := mk object_id kind holder drawn.
(* services_storage/src/permissions.rs:140-148 Display for Capability *)
Definition display `{UuidFormat} (c : t) : string :=
  "Cap[" +:+ CapabilityKind.display (kind c) +:+ " on " +:+ ObjectId.display (object_id c)
  +:+ " for " +:+ PrincipalId.display (holder c) +:+ "]".
End Capability.

Module Ownership.
(* services_storage/src/permissions.rs:150-167 Ownership *)
Record t := mk {
  owner : PrincipalId.t;
  created_at : N;
  last_modified_by : PrincipalId.t;
  last_modified_at : N;
  description : option string
}.
#[global] Instance rebuild_t : Rebuild t := λ o,
  mk (owner o) (created_at o) (last_modified_by o) (last_modified_at o) (description o).
(* services_storage/src/permissions.rs:170-179 Ownership::new *)
Definition new (owner : PrincipalId.t) (timestamp : N) : t :=
  mk owner timestamp owner timestamp None.
(* services_storage/src/permissions.rs:181-185 Ownership::update *)
Definition update (modifier : PrincipalId.t) (timestamp : N) (o : t) : t :=
  o <| last_modified_by := modifier |> <| last_modified_at := timestamp |>.
(* services_storage/src/permissions.rs:187-191 Ownership::with_description *)
Definition with_description (d : string) (o : t) : t := o <| description := Some d |>.
End Ownership.

Module AccessDenialReason.
(* services_storage/src/permissions.rs:194-227 AccessDenialReason *)
Inductive t :=
| MissingCapability (required : CapabilityKind.t) (object_id : ObjectId.t)
    (principal : PrincipalId.t)
| WrongObject (capability_object requested_object : ObjectId.t)
| WrongPrincipal (capability_holder requesting_principal : PrincipalId.t)
| WrongCapabilityKind (capability_kind required_kind : CapabilityKind.t)
| ObjectNotFound (object_id : ObjectId.t)
| VersionNotFound (version_id : VersionId.t).
(* services_storage/src/permissions.rs:229-281 Display for AccessDenialReason *)
Definition display `{UuidFormat} (r : t) : string :=
  "Access denied: " +:+
  match r with
  | MissingCapability k o p =>
      PrincipalId.display p +:+ " requires " +:+ CapabilityKind.display k
      +:+ " capability on " +:+ ObjectId.display o +:+ ", but none was provided"
  | WrongObject c o =>
      "Capability is for " +:+ ObjectId.display c +:+ ", but access to "
      +:+ ObjectId.display o +:+ " was requested"
  | WrongPrincipal h p =>
      "Capability is held by " +:+ PrincipalId.display h +:+ ", but "
      +:+ PrincipalId.display p +:+ " is requesting access"
  | WrongCapabilityKind c k =>
      "Operation requires " +:+ CapabilityKind.display k +:+ " capability, but only "
      +:+ CapabilityKind.display c +:+ " was provided"
  | ObjectNotFound o => "Object " +:+ ObjectId.display o +:+ " does not exist"
  | VersionNotFound v => "Version " +:+ VersionId.display v +:+ " does not exist"
  end.
End AccessDenialReason.

Module PermissionChecker.
(* services_storage/src/permissions.rs:283-287 PermissionChecker *)
Record t := mk { ownership : gmap ObjectId.t Ownership.t }.
#[global] Instance rebuild_t : Rebuild t := λ c, mk (ownership c).
(* services_storage/src/permissions.rs:290-295 PermissionChecker::new *)
Definition new : t := mk ∅.
(* services_storage/src/permissions.rs:297-300 PermissionChecker::register_object *)
Definition register_object (o : ObjectId.t) (own : Ownership.t) (c : t) : t :=
  c <| ownership ::= <[o := own]> |>.
(* services_storage/src/permissions.rs:302-346 PermissionChecker::check_access *)
Definition check_access (capability : Capability.t) (object_id : ObjectId.t)
    (required_kind : CapabilityKind.t) (principal : PrincipalId.t) (c : t)
    : result unit AccessDenialReason.t :=
  if bool_decide (ownership c !! object_id = None)
  then Err (AccessDenialReason.ObjectNotFound object_id)
  else if bool_decide (Capability.object_id capability ≠ object_id)
  then Err (AccessDenialReason.WrongObject (Capability.object_id capability) object_id)
  else if bool_decide (Capability.holder capability ≠ principal)
  then Err (AccessDenialReason.WrongPrincipal (Capability.holder capability) principal)
  else if bool_decide (Capability.kind capability = CapabilityKind.Own)
  then Ok tt
  else if bool_decide (Capability.kind capability ≠ required_kind)
  then Err (AccessDenialReason.WrongCapabilityKind (Capability.kind capability) required_kind)
  else Ok tt.
(* services_storage/src/permissions.rs:348-351 PermissionChecker::get_ownership *)
Definition get_ownership (o : ObjectId.t) (c : t) : option Ownership.t := ownership c !! o.
(* services_storage/src/permissions.rs:353-359 PermissionChecker::is_owner *)
Definition is_owner (o : ObjectId.t) (principal : PrincipalId.t) (c : t) : bool :=
  match ownership c !! o with
  | Some own => bool_decide (Ownership.owner own = principal)
  | None => false
  end.
End PermissionChecker.

Module Object.
(* services_storage/src/object.rs:113-134 Object *)
Record t := mk {
  id : ObjectId.t;
  version : VersionId.t;
  kind : ObjectKind.t;
  schema_id : option ObjectSchemaId.t;
  schema_version : option ObjectSchemaVersion.t;
  migration_lineage : option MigrationLineage.t;
  metadata : list (string * string);
  ownership : option Ownership.t
}.
#[global] Instance rebuild_t : Rebuild t := λ o,
  mk (id o) (version o) (kind o) (schema_id o) (schema_version o) (migration_lineage o)
     (metadata o) (ownership o).
(* services_storage/src/object.rs:137-149 Object::new *)
Definition new (id : ObjectId.t) (version : VersionId.t) (kind : ObjectKind.t) : t :=
  mk id version kind None None None [] None.
(* services_storage/src/object.rs:151-160 Object::with_schema *)
Definition with_schema (s : ObjectSchemaId.t) (v : ObjectSchemaVersion.t) (o : t) : t :=
  o <| schema_id := Some s |> <| schema_version := Some v |>.
(* services_storage/src/object.rs:162-166 Object::with_migration_lineage *)
Definition with_migration_lineage (l : MigrationLineage.t) (o : t) : t :=
  o <| migration_lineage := Some l |>.
(* services_storage/src/object.rs:168-172 Object::with_metadata *)
Definition with_metadata (key value : string) (o : t) : t :=
  o <| metadata ::= λ m, m ++ [(key, value)] |>.
(* services_storage/src/object.rs:174-178 Object::with_ownership *)
Definition with_ownership (own : Ownership.t) (o : t) : t := o <| ownership := Some own |>.
End Object.

(** ** Transactions ([transaction.rs]) *)

Module TransactionId.
(* services_storage/src/transaction.rs:10-22 TransactionId *)
Record t := mk { as_uuid : Uuid }.
#[global] Instance eq_dec : EqDecision t.
Proof. solve_decision. Defined.
#[global] Program Instance countable : Countable t := inj_countable' as_uuid mk _.
Next Obligation. by intros []. Qed.
End TransactionId.

Module TransactionError.
(* services_storage/src/transaction.rs:30-47 TransactionError *)
Inductive t :=
| Conflict (msg : string)
| ObjectNotFound (msg : string)
| AlreadyFinalized
| InvalidOperation (msg : string)
| StorageError (msg : string).
#[global] Instance eq_dec : EqDecision t.
Proof. solve_decision. Defined.
(* services_storage/src/transaction.rs:49-59 Display for TransactionError *)
Definition display (e : t) : string :=
  match e with
  | Conflict msg => "Transaction conflict on object " +:+ msg
  | ObjectNotFound msg => "Object not found: " +:+ msg
  | AlreadyFinalized => "Transaction already finalized"
  | InvalidOperation msg => "Invalid operation: " +:+ msg
  | StorageError msg => "Storage error: " +:+ msg
  end.
End TransactionError.

Module TransactionState.
(* services_storage/src/transaction.rs:61-70 TransactionState *)
Inductive t := Active | Committed | RolledBack.
#[global] Instance eq_dec : EqDecision t.
Proof. solve_decision. Defined.
End TransactionState.

Module Transaction.
(* services_storage/src/transaction.rs:72-97 Transaction *)
Record t := mk {
  id : TransactionId.t;
  state : TransactionState.t;
  modified : list ObjectId.t
}.
#[global] Instance rebuild_t : Rebuild t := λ x, mk (id x) (state x) (modified x).
(* services_storage/src/transaction.rs:100-107 Transaction::new *)
Definition new (id : TransactionId.t) : t := mk id TransactionState.Active [].
Definition is_active (x : t) : bool := bool_decide (state x = TransactionState.Active).
(* services_storage/src/transaction.rs:119-126 Transaction::modify *)
Definition modify (o : ObjectId.t) (x : t) : result unit TransactionError.t * t :=
  if is_active x then (Ok tt, x <| modified ::= λ l, l ++ [o] |>)
  else (Err TransactionError.AlreadyFinalized, x).
(* services_storage/src/transaction.rs:128-131 Transaction::modified_objects *)
Definition modified_objects (x : t) : list ObjectId.t := modified x.
(* services_storage/src/transaction.rs:133-143 Transaction::commit *)
Definition commit (x : t) : result unit TransactionError.t * t :=
  if is_active x then (Ok tt, x <| state := TransactionState.Committed |>)
  else (Err TransactionError.AlreadyFinalized, x).
(* services_storage/src/transaction.rs:145-156 Transaction::rollback *)
Definition rollback (x : t) : result unit TransactionError.t * t :=
  if is_active x
  then (Ok tt, x <| state := TransactionState.RolledBack |> <| modified := [] |>)
  else (Err TransactionError.AlreadyFinalized, x).
End Transaction.

(** The trait [TransactionalStorage].  An operation that takes [&mut Transaction] and
    [&mut self] maps the pair of both to its result and the new pair; the identifiers an
    operation draws are its first arguments. *)
(* services_storage/src/transaction.rs:165-186 TransactionalStorage *)
Class TransactionalStorage (S : Type) := {
  begin_transaction : TransactionId.t → S → outcome (result Transaction.t TransactionError.t * S);
  read : Transaction.t → ObjectId.t → S → result VersionId.t TransactionError.t;
  write : VersionId.t → ObjectId.t → list N → Transaction.t * S →
    outcome (result VersionId.t TransactionError.t * (Transaction.t * S));
  commit : Transaction.t * S → outcome (result unit TransactionError.t * (Transaction.t * S));
  rollback : Transaction.t * S → outcome (result unit TransactionError.t * (Transaction.t * S))
}.

(** ** The journaled store ([journaled_storage.rs]) *)

Module VersionEntry.
(* services_storage/src/journaled_storage.rs:14-18 VersionEntry *)
Record t := mk { version_id : VersionId.t; data : list N }.
End VersionEntry.

Module PendingWrite.
(* services_storage/src/journaled_storage.rs:33-38 PendingWrite *)
Record t := mk { object_id : ObjectId.t; version_id : VersionId.t; data : list N }.
End PendingWrite.

Module JournalEntry.
(* services_storage/src/journaled_storage.rs:20-31 JournalEntry *)
Inductive t :=
| Write (tx_id : TransactionId.t) (object_id : ObjectId.t) (version_id : VersionId.t)
    (data : list N)
| Commit (tx_id : TransactionId.t).
End JournalEntry.

Module JournaledStorage.
(** The committed versions of each object, oldest first, and the writes of each open
    transaction, in order. *)
Notation versions := (gmap ObjectId.t (list VersionEntry.t)).
Notation writes := (gmap TransactionId.t (list PendingWrite.t)).

(* services_storage/src/journaled_storage.rs:40-46 JournaledStorage *)
Record t := mk {
  objects : versions;
  journal : list JournalEntry.t;
  pending : writes
}.
#[global] Instance rebuild_t : Rebuild t := λ s, mk (objects s) (journal s) (pending s).

(* services_storage/src/journaled_storage.rs:49-55 JournaledStorage::new *)
Definition new : t := mk ∅ [] ∅.
(* services_storage/src/journaled_storage.rs:57-60 JournaledStorage::journal_entries *)
Definition journal_entries (s : t) : list JournalEntry.t := journal s.

(** [map.entry(k).or_default().push(x)]. *)
Definition push_entry `{Countable K} {A} (k : K) (x : A) (m : gmap K (list A))
    : gmap K (list A) := <[k := m !!! k ++ [x]]> m.

(** The loop that appends the writes of a transaction to their objects. *)
(* services_storage/src/journaled_storage.rs:216-226 JournaledStorage::commit *)
Definition apply_writes (ws : list PendingWrite.t) (objs : versions) : versions :=
  foldl (λ objs w, push_entry (PendingWrite.object_id w)
                     (VersionEntry.mk (PendingWrite.version_id w) (PendingWrite.data w)) objs)
    objs ws.

(** The body of the loop of [recover], on the objects and the local map [writes]. *)
(* services_storage/src/journaled_storage.rs:115-143 JournaledStorage::recover *)
Definition recover_entry (acc : versions * writes) (entry : JournalEntry.t) : versions * writes :=
  let '(objs, ws) := acc in
  match entry with
  | JournalEntry.Write tx_id object_id version_id data =>
      (objs, push_entry tx_id (PendingWrite.mk object_id version_id data) ws)
  | JournalEntry.Commit tx_id =>
      match ws !! tx_id with
      | Some pending => (apply_writes pending objs, delete tx_id ws)
      | None => (objs, ws)
      end
  end.
(* services_storage/src/journaled_storage.rs:108-144 JournaledStorage::recover *)
Definition recover (s : t) : t :=
  let '(objs, _) := foldl recover_entry (∅, ∅) (journal s) in
  s <| objects := objs |> <| pending := ∅ |>.
(* services_storage/src/journaled_storage.rs:69-80 JournaledStorage::from_journal *)
Definition from_journal (entries : list JournalEntry.t) : t := recover (mk ∅ entries ∅).

(** What a transaction sees of an object: its own last write, else the last committed
    version. *)
Definition own_write (tx : Transaction.t) (o : ObjectId.t) (s : t) : option PendingWrite.t :=
  ws ← pending s !! Transaction.id tx;
  rfind (λ w, bool_decide (PendingWrite.object_id w = o)) ws.

Section with_format.
Context `{UuidFormat}.

(* services_storage/src/journaled_storage.rs:82-106 JournaledStorage::read_data *)
Definition read_data (tx : Transaction.t) (o : ObjectId.t) (s : t)
    : result (list N) TransactionError.t :=
  if negb (Transaction.is_active tx) then Err TransactionError.AlreadyFinalized
  else match own_write tx o s with
  | Some w => Ok (PendingWrite.data w)
  | None =>
      match objects s !! o with
      | None => Err (TransactionError.ObjectNotFound (ObjectId.display o))
      | Some vs => ok_or (VersionEntry.data <$> last vs)
                     (TransactionError.ObjectNotFound (ObjectId.display o))
      end
  end.
(* services_storage/src/journaled_storage.rs:158-177 JournaledStorage::read *)
Definition read (tx : Transaction.t) (o : ObjectId.t) (s : t)
    : result VersionId.t TransactionError.t :=
  if negb (Transaction.is_active tx) then Err TransactionError.AlreadyFinalized
  else match own_write tx o s with
  | Some w => Ok (PendingWrite.version_id w)
  | None =>
      match objects s !! o with
      | None => Err (TransactionError.ObjectNotFound (ObjectId.display o))
      | Some vs => ok_or (VersionEntry.version_id <$> last vs)
                     (TransactionError.ObjectNotFound (ObjectId.display o))
      end
  end.
End with_format.

(* services_storage/src/journaled_storage.rs:154-156 JournaledStorage::begin_transaction *)
Definition begin_transaction (drawn : TransactionId.t) (s : t)
    : result Transaction.t TransactionError.t * t := (Ok (Transaction.new drawn), s).
(* services_storage/src/journaled_storage.rs:179-209 JournaledStorage::write *)
Definition write (drawn : VersionId.t) (o : ObjectId.t) (data : list N) (ts : Transaction.t * t)
    : result VersionId.t TransactionError.t * (Transaction.t * t) :=
  let '(tx, s) := ts in
  if negb (Transaction.is_active tx) then (Err TransactionError.AlreadyFinalized, (tx, s))
  else
    let s := s <| pending ::= push_entry (Transaction.id tx) (PendingWrite.mk o drawn data) |> in
    let s := s <| journal ::= λ j, j ++ [JournalEntry.Write (Transaction.id tx) o drawn data] |> in
    let '(r, tx) := Transaction.modify o tx in
    (map_ok (λ _, drawn) r, (tx, s)).
(* services_storage/src/journaled_storage.rs:211-231 JournaledStorage::commit *)
Definition commit (ts : Transaction.t * t)
    : result unit TransactionError.t * (Transaction.t * t) :=
  let '(tx, s) := ts in
  if negb (Transaction.is_active tx) then (Err TransactionError.AlreadyFinalized, (tx, s))
  else
    let s :=
      match pending s !! Transaction.id tx with
      | Some ws => s <| pending ::= delete (Transaction.id tx) |> <| objects ::= apply_writes ws |>
      | None => s
      end in
    let s := s <| journal ::= λ j, j ++ [JournalEntry.Commit (Transaction.id tx)] |> in
    let '(r, tx) := Transaction.commit tx in
    (r, (tx, s)).
(* services_storage/src/journaled_storage.rs:233-241 JournaledStorage::rollback *)
Definition rollback (ts : Transaction.t * t)
    : result unit TransactionError.t * (Transaction.t * t) :=
  let '(tx, s) := ts in
  if negb (Transaction.is_active tx) then (Err TransactionError.AlreadyFinalized, (tx, s))
  else
    let s := s <| pending ::= delete (Transaction.id tx) |> in
    let '(r, tx) := Transaction.rollback tx in
    (r, (tx, s)).
End JournaledStorage.

(* services_storage/src/journaled_storage.rs:153-242 TransactionalStorage for JournaledStorage *)
#[global] Instance journaled_storage `{UuidFormat} : TransactionalStorage JournaledStorage.t := {|
  begin_transaction d s := Return (JournaledStorage.begin_transaction d s);
  read := JournaledStorage.read;
  write d o data ts := Return (JournaledStorage.write d o data ts);
  commit ts := Return (JournaledStorage.commit ts);
  rollback ts := Return (JournaledStorage.rollback ts)
|}.

(** ** The service: a store behind a budget *)

Module StorageOperation.
(* services_storage/src/journaled_storage.rs:269-275 StorageOperation *)
Inductive t := Read | Write | Commit.
End StorageOperation.

(** The trait [StorageBudget]. *)
(* services_storage/src/journaled_storage.rs:244-251 StorageBudget *)
Class StorageBudget (B : Type) :=
  consume_storage_op : ExecutionId.t → StorageOperation.t → B → outcome (result unit KernelError.t * B).

(* services_storage/src/journaled_storage.rs:253-267 StorageBudget for SimulatedKernel *)
#[global] Instance kernel_storage_budget `{HashOrder} `{UuidFormat} : StorageBudget Kernel.t :=
  λ eid operation k,
    let op :=
      match operation with
      | StorageOperation.Read => AuditLogs.StorageOperation.Read
      | StorageOperation.Write => AuditLogs.StorageOperation.Write
      | StorageOperation.Commit => AuditLogs.StorageOperation.Commit
      end in
    Kernel.try_consume_storage_op eid op k.

Module StorageServiceError.
(* services_storage/src/journaled_storage.rs:277-282 StorageServiceError *)
Inductive t := Transaction (msg : string) | Budget (msg : string).
(* services_storage/src/journaled_storage.rs:284-291 Display for StorageServiceError *)
Definition display (e : t) : string :=
  match e with
  | Transaction msg => "Transaction error: " +:+ msg
  | Budget msg => "Budget error: " +:+ msg
  end.
(* services_storage/src/journaled_storage.rs:293-298 From<TransactionError> for StorageServiceError *)
Definition from_transaction (e : TransactionError.t) : t :=
  Transaction (TransactionError.display e).
(* services_storage/src/journaled_storage.rs:300-305 From<KernelError> for StorageServiceError *)
Definition from_kernel (e : KernelError.t) : t := Budget (Debug.kernel_error e).
End StorageServiceError.

Module StorageService.
Section with_budget.
Context `{UuidFormat} {B : Type} `{StorageBudget B}.

(* services_storage/src/journaled_storage.rs:307-316 StorageService *)
Record t := mk { storage : JournaledStorage.t; budget : B }.
#[global] Instance rebuild_t : Rebuild t := λ s, mk (storage s) (budget s).

(** [self.budget.consume_storage_op(..)?]. *)
Definition charge (eid : ExecutionId.t) (op : StorageOperation.t) (s : t)
    : outcome (result unit StorageServiceError.t * t) :=
  '(r, b) ← consume_storage_op eid op (budget s);
  Return (map_err StorageServiceError.from_kernel r, s <| budget := b |>).

(** The store's part of an operation on a transaction, its error converted by [?]. *)
Definition on_storage {A}
    (f : Transaction.t * JournaledStorage.t →
         result A TransactionError.t * (Transaction.t * JournaledStorage.t))
    (tx : Transaction.t) (s : t) : result A StorageServiceError.t * (Transaction.t * t) :=
  let '(r, (tx, st)) := f (tx, storage s) in
  (map_err StorageServiceError.from_transaction r, (tx, s <| storage := st |>)).

(* services_storage/src/journaled_storage.rs:318-320 StorageService::begin_transaction *)
Definition begin_transaction (drawn : TransactionId.t) (s : t)
    : result Transaction.t StorageServiceError.t * t :=
  let '(r, st) := JournaledStorage.begin_transaction drawn (storage s) in
  (map_err StorageServiceError.from_transaction r, s <| storage := st |>).
(* services_storage/src/journaled_storage.rs:322-331 StorageService::read *)
Definition read (eid : ExecutionId.t) (tx : Transaction.t) (o : ObjectId.t) (s : t)
    : outcome (result VersionId.t StorageServiceError.t * t) :=
  try! _, s := charge eid StorageOperation.Read s in
  Return (map_err StorageServiceError.from_transaction (JournaledStorage.read tx o (storage s)), s).
(* services_storage/src/journaled_storage.rs:333-343 StorageService::write *)
Definition write (drawn : VersionId.t) (eid : ExecutionId.t) (o : ObjectId.t) (data : list N)
    (ts : Transaction.t * t)
    : outcome (result VersionId.t StorageServiceError.t * (Transaction.t * t)) :=
  let '(tx, s) := ts in
  '(r, s) ← charge eid StorageOperation.Write s;
  match r with
  | Err e => Return (Err e, (tx, s))
  | Ok _ => Return (on_storage (JournaledStorage.write drawn o data) tx s)
  end.
(* services_storage/src/journaled_storage.rs:345-353 StorageService::commit *)
Definition commit (eid : ExecutionId.t) (ts : Transaction.t * t)
    : outcome (result unit StorageServiceError.t * (Transaction.t * t)) :=
  let '(tx, s) := ts in
  '(r, s) ← charge eid StorageOperation.Commit s;
  match r with
  | Err e => Return (Err e, (tx, s))
  | Ok _ => Return (on_storage JournaledStorage.commit tx s)
  end.
(* services_storage/src/journaled_storage.rs:355-357 StorageService::rollback *)
Definition rollback (ts : Transaction.t * t)
    : result unit StorageServiceError.t * (Transaction.t * t) :=
  let '(tx, s) := ts in on_storage JournaledStorage.rollback tx s.
(* services_storage/src/journaled_storage.rs:359-361 StorageService::recover *)
Definition recover (s : t) : t := s <| storage ::= JournaledStorage.recover |>.
End with_budget.
Arguments t B : clear implicits.
End StorageService.

(** ** Migration ([migration.rs]) *)

Module MigrationError.
(* services_storage/src/migration.rs:12-24 MigrationError *)
Inductive t :=
| UnsupportedMigration (from to : ObjectSchemaVersion.t)
| InvalidData (msg : string)
| MissingVersion (required : ObjectSchemaVersion.t).
(* services_storage/src/migration.rs:26-44 Display for MigrationError *)
Definition display (e : t) : string :=
  match e with
  | UnsupportedMigration from to =>
      "Migration from " +:+ ObjectSchemaVersion.display from +:+ " to "
      +:+ ObjectSchemaVersion.display to +:+ " is not supported"
  | InvalidData msg => "Migration failed: invalid data - " +:+ msg
  | MissingVersion v =>
      "Migration requires version " +:+ ObjectSchemaVersion.display v
      +:+ " which is not available"
  end.
End MigrationError.

(* services_storage/src/migration.rs:46-79 Migrator *)
Class Migrator (M : Type) := {
  migrate : ObjectSchemaVersion.t → ObjectSchemaVersion.t → list N → M →
    result (list N) MigrationError.t;
  supports_migration : ObjectSchemaVersion.t → ObjectSchemaVersion.t → M → bool
}.

Module SequentialMigrator.
(** A migration step is a boxed function from the bytes of one version to the next. *)
Definition step := list N → result (list N) MigrationError.t.
(* services_storage/src/migration.rs:81-90 SequentialMigrator *)
Record t := mk { migrations : list step }.
(* services_storage/src/migration.rs:93-98 SequentialMigrator::new *)
Definition new : t := mk [].
(* services_storage/src/migration.rs:100-109 SequentialMigrator::add_migration *)
Definition add_migration (f : step) (m : t) : t := mk (migrations m ++ [f]).
(* services_storage/src/migration.rs:143-146 MAX_REASONABLE_VERSION *)
Definition MAX_REASONABLE_VERSION : N := 1000000.

(** The loop over [i] in [i .. i + n]. *)
(* services_storage/src/migration.rs:167-179 SequentialMigrator::migrate *)
Fixpoint run_steps (m : t) (i : N) (n : nat) (data : list N)
    : result (list N) MigrationError.t :=
  match n with
  | O => Ok data
  | S n =>
      match migrations m !! N.to_nat i with
      | None => Err (MigrationError.MissingVersion (ObjectSchemaVersion.new ((i + 2) mod 2 ^ 32)))
      | Some f => match f data with
                  | Ok data => run_steps m (i + 1) n data
                  | Err e => Err e
                  end
      end
  end.
(* services_storage/src/migration.rs:119-180 SequentialMigrator::migrate *)
Definition migrate (from to : ObjectSchemaVersion.t) (data : list N) (m : t)
    : result (list N) MigrationError.t :=
  if bool_decide (from = to) then Ok data
  else
    let unsupported := Err (MigrationError.UnsupportedMigration from to) in
    let f := ObjectSchemaVersion.as_u32 from in
    let g := ObjectSchemaVersion.as_u32 to in
    if g <? f then unsupported
    else if (MAX_REASONABLE_VERSION <? f) || (MAX_REASONABLE_VERSION <? g) then unsupported
    else if (f <? 1) || (len (migrations m) + 1 <? g) then unsupported
    else run_steps m (f - 1) (N.to_nat (g - 1 - (f - 1))) data.
(* services_storage/src/migration.rs:182-200 SequentialMigrator::supports_migration *)
Definition supports_migration (from to : ObjectSchemaVersion.t) (m : t) : bool :=
  if bool_decide (from = to) then true
  else
    let f := ObjectSchemaVersion.as_u32 from in
    let g := ObjectSchemaVersion.as_u32 to in
    if g <? f then false
    else (0 <? f) && (g <=? len (migrations m) + 1).
End SequentialMigrator.

(* services_storage/src/migration.rs:118-201 Migrator for SequentialMigrator *)
#[global] Instance sequential_migrator : Migrator SequentialMigrator.t := {|
  migrate := SequentialMigrator.migrate;
  supports_migration := SequentialMigrator.supports_migration
|}.

(* services_storage/src/migration.rs:203-214 create_lineage *)
Definition create_lineage (from to : ObjectSchemaVersion.t) (timestamp : option N)
    : MigrationLineage.t :=
  let lineage := MigrationLineage.new from to in
  match timestamp with
  | Some ts => MigrationLineage.with_timestamp ts lineage
  | None => lineage
  end.
