(* ===== verification/StorageProps.v ===== *)
(** * What the storage service promises

    The journaled store against an atomic multi-version store over every history of
    transactions and crashes; the charge for operations; access checks; migration. *)

From S2P Require Import Prelude CoreTypes Debug Resources Identity AuditLogs Kernel KernelSpec KernelProps BudgetProps Storage.
Open Scope string_scope.
Open Scope list_scope.
Open Scope N_scope.

(** ** Histories

    Clients hold transactions and use them on one store.  A crash loses the clients'
    transactions and rebuilds the store from its journal. *)
Module StoreHistory.
Inductive op :=
| Begin (id : TransactionId.t)
| Write (id : TransactionId.t) (v : VersionId.t) (o : ObjectId.t) (data : list N)
| Commit (id : TransactionId.t)
| Rollback (id : TransactionId.t)
| Crash.

Record world := mk {
  storage : JournaledStorage.t;
  handles : gmap TransactionId.t Transaction.t
}.
#[global] Instance rebuild_world : Rebuild world := λ w, mk (storage w) (handles w).

Definition initial : world := mk JournaledStorage.new ∅.

(** An operation of the store on a transaction that a client holds. *)
Definition on_handle {A}
    (f : Transaction.t * JournaledStorage.t → A * (Transaction.t * JournaledStorage.t))
    (id : TransactionId.t) (w : world) : world :=
  match handles w !! id with
  | None => w
  | Some tx =>
      let '(_, (tx, s)) := f (tx, storage w) in mk s (<[id := tx]> (handles w))
  end.

Definition exec (w : world) (o : op) : world :=
  match o with
  | Begin id =>
      match JournaledStorage.begin_transaction id (storage w) with
      | (Ok tx, s) => mk s (<[id := tx]> (handles w))
      | (Err _, s) => w <| storage := s |>
      end
  | Write id v o data => on_handle (JournaledStorage.write v o data) id w
  | Commit id => on_handle JournaledStorage.commit id w
  | Rollback id => on_handle JournaledStorage.rollback id w
  | Crash => mk (JournaledStorage.recover (storage w)) ∅
  end.
Definition run (ops : list op) : world := foldl exec initial ops.

(** The transaction identifiers drawn by a history. *)
Definition begun (ops : list op) : list TransactionId.t :=
  omap (λ o, match o with Begin id => Some id | _ => None end) ops.
End StoreHistory.

(** ** The abstract store

    Committed versions of every object, and the writes buffered by the transactions that
    are open.  A commit publishes the buffer at once; a crash drops the buffers and
    nothing else. *)
Module AtomicStore.
Record t := mk {
  store : ObjectId.t → list VersionEntry.t;
  buffers : gmap TransactionId.t (list PendingWrite.t)
}.

(** The versions that a list of writes gives to object [o]. *)
Definition versions_of (o : ObjectId.t) (ws : list PendingWrite.t) : list VersionEntry.t :=
  omap (λ w, if bool_decide (PendingWrite.object_id w = o)
             then Some (VersionEntry.mk (PendingWrite.version_id w) (PendingWrite.data w))
             else None) ws.

Definition step (a : t) (o : StoreHistory.op) : t :=
  match o with
  | StoreHistory.Begin id => mk (store a) (<[id := []]> (buffers a))
  | StoreHistory.Write id v o data =>
      match buffers a !! id with
      | Some ws => mk (store a) (<[id := ws ++ [PendingWrite.mk o v data]]> (buffers a))
      | None => a
      end
  | StoreHistory.Commit id =>
      match buffers a !! id with
      | Some ws => mk (λ o, store a o ++ versions_of o ws) (delete id (buffers a))
      | None => a
      end
  | StoreHistory.Rollback id => mk (store a) (delete id (buffers a))
  | StoreHistory.Crash => mk (store a) ∅
  end.
Definition run (ops : list StoreHistory.op) : t := foldl step (mk (λ _, []) ∅) ops.

(** The version of [o] that transaction [id] reads: its own last write to [o], else the
    last committed version; [None] when the transaction is not open or there is none. *)
Definition read (id : TransactionId.t) (o : ObjectId.t) (a : t) : option VersionEntry.t :=
  ws ← buffers a !! id; last (store a o ++ versions_of o ws).
End AtomicStore.

Module StorageSpec.
Import StoreHistory.

(** *** Lemmas on the maps of the store *)

Lemma push_entry_total `{Countable K} {A} (k k' : K) (x : A) m :
  JournaledStorage.push_entry k x m !!! k' = m !!! k' ++ (if decide (k = k') then [x] else []).
Proof.
  unfold JournaledStorage.push_entry. destruct (decide (k = k')) as [<-|Hne].
  - by rewrite lookup_total_insert_eq.
  - by rewrite lookup_total_insert_ne, app_nil_r.
Qed.

Lemma apply_writes_total ws objs o :
  JournaledStorage.apply_writes ws objs !!! o = objs !!! o ++ AtomicStore.versions_of o ws.
Proof.
  unfold JournaledStorage.apply_writes, AtomicStore.versions_of. revert objs.
  induction ws as [|w ws IH]; intros objs; simpl; [by rewrite app_nil_r|].
  rewrite IH, push_entry_total. destruct (decide _) as [<-|Hne].
  - by rewrite bool_decide_eq_true_2, <- app_assoc.
  - by rewrite bool_decide_eq_false_2, app_nil_r.
Qed.

Lemma apply_writes_nonempty ws objs o :
  objs !! o ≠ Some [] → JournaledStorage.apply_writes ws objs !! o ≠ Some [].
Proof.
  unfold JournaledStorage.apply_writes. intros Ho.
  apply (foldl_ind (λ m : JournaledStorage.versions, m !! o ≠ Some [])); [done|].
  intros m w _ Hm. unfold JournaledStorage.push_entry.
  destruct (decide (PendingWrite.object_id w = o)) as [->|Hne].
  - rewrite lookup_insert_eq. by destruct (m !!! o).
  - by rewrite lookup_insert_ne.
Qed.

Lemma head_filter_rev_last (o : ObjectId.t) (ws : list PendingWrite.t) :
  (λ w, VersionEntry.mk (PendingWrite.version_id w) (PendingWrite.data w)) <$>
    rfind (λ w, bool_decide (PendingWrite.object_id w = o)) ws =
  last (AtomicStore.versions_of o ws).
Proof.
  unfold AtomicStore.versions_of.
  induction ws as [|w ws IH] using rev_ind; [done|].
  rewrite rfind_snoc, omap_app. simpl.
  destruct (bool_decide_reflect (PendingWrite.object_id w = o)) as [Ho|Ho]; simpl.
  - by rewrite last_snoc.
  - by rewrite app_nil_r, IH.
Qed.

(** *** The journal determines the store *)

Definition replay (j : list JournalEntry.t) : JournaledStorage.versions * JournaledStorage.writes :=
  foldl JournaledStorage.recover_entry (∅, ∅) j.

Lemma replay_snoc j e : replay (j ++ [e]) = JournaledStorage.recover_entry (replay j) e.
Proof. unfold replay. by rewrite foldl_app. Qed.

Lemma recover_objects s : JournaledStorage.objects (JournaledStorage.recover s)
  = (replay (JournaledStorage.journal s)).1.
Proof. unfold JournaledStorage.recover, replay. by destruct foldl. Qed.
Lemma recover_pending s : JournaledStorage.pending (JournaledStorage.recover s) = ∅.
Proof. unfold JournaledStorage.recover. by destruct foldl. Qed.
Lemma recover_journal s :
  JournaledStorage.journal (JournaledStorage.recover s) = JournaledStorage.journal s.
Proof. unfold JournaledStorage.recover. by destruct foldl. Qed.

(** The simulation relation between the code and the abstract store. *)
Record simulates (used : list TransactionId.t) (w : world) (a : AtomicStore.t) : Prop := {
  sim_objects : JournaledStorage.objects (storage w)
                = (replay (JournaledStorage.journal (storage w))).1;
  sim_store o : JournaledStorage.objects (storage w) !!! o = AtomicStore.store a o;
  sim_nonempty o : JournaledStorage.objects (storage w) !! o ≠ Some [];
  sim_id id tx : handles w !! id = Some tx → Transaction.id tx = id;
  sim_buffer id : AtomicStore.buffers a !! id =
    match handles w !! id with
    | Some tx => if Transaction.is_active tx
                 then Some (JournaledStorage.pending (storage w) !!! id) else None
    | None => None
    end;
  sim_open id : is_Some (AtomicStore.buffers a !! id) →
    JournaledStorage.pending (storage w) !! id
    = (replay (JournaledStorage.journal (storage w))).2 !! id;
  sim_used id : is_Some (handles w !! id) ∨
    is_Some ((replay (JournaledStorage.journal (storage w))).2 !! id) ∨
    is_Some (JournaledStorage.pending (storage w) !! id) → id ∈ used
}.

Lemma sim_fresh used w a id : simulates used w a → id ∉ used →
  handles w !! id = None ∧ JournaledStorage.pending (storage w) !! id = None ∧
  (replay (JournaledStorage.journal (storage w))).2 !! id = None.
Proof.
  intros S Hid. rewrite !eq_None_not_Some.
  split_and!; intros Hs; apply Hid, (sim_used _ _ _ S); auto.
Qed.

Lemma sim_begin used w a id : id ∉ used → simulates used w a →
  simulates (used ++ [id]) (exec w (Begin id)) (AtomicStore.step a (Begin id)).
Proof.
  intros Hid S. destruct (sim_fresh _ _ _ _ S Hid) as (Hh & Hp & Hr).
  destruct S as [S1 S2 S3 S4 S5 S6 S7]. constructor; simpl; try done.
  all: intros id'; destruct (decide (id = id')) as [<-|Hne]; rewrite ?lookup_insert_eq,
    ?(lookup_insert_ne _ id id') by done; eauto.
  - by intros tx [= <-].
  - by rewrite lookup_total_alt, Hp.
  - by rewrite Hp, Hr.
  - intros _. set_solver.
  - intros Hs. apply elem_of_app; auto.
Qed.

(** An operation on a finished transaction changes nothing. *)
Lemma on_handle_refused {A} f id w tx (r : A) :
  handles w !! id = Some tx → f (tx, storage w) = (r, (tx, storage w)) → on_handle f id w = w.
Proof.
  intros Hh Hf. unfold on_handle. rewrite Hh, Hf. rewrite insert_id by done. by destruct w.
Qed.

Lemma sim_write used w a id v o data : simulates used w a →
  simulates used (exec w (Write id v o data)) (AtomicStore.step a (Write id v o data)).
Proof.
  intros S. pose proof (sim_buffer _ _ _ S id) as Hb. simpl.
  destruct (handles w !! id) as [tx|] eqn:Hh; rewrite Hb.
  2:{ unfold on_handle. by rewrite Hh. }
  destruct (Transaction.is_active tx) eqn:Hact.
  2:{ erewrite on_handle_refused; [done..|]. unfold JournaledStorage.write. by rewrite Hact. }
  pose proof (sim_id _ _ _ S _ _ Hh) as Hid.
  unfold on_handle. rewrite Hh. unfold JournaledStorage.write, Transaction.modify.
  rewrite Hact. simpl. rewrite Hid.
  assert (Ho := sim_open _ _ _ S id). rewrite Hb in Ho. specialize (Ho ltac:(done)).
  destruct S as [S1 S2 S3 S4 S5 S6 S7].
  constructor; simpl; rewrite ?replay_snoc; destruct replay as [objs ws] eqn:Hr; simpl in *;
    try done; intros id'; unfold JournaledStorage.push_entry;
    destruct (decide (id = id')) as [<-|Hne]; rewrite ?lookup_insert_eq,
    ?lookup_total_insert_eq, ?(lookup_insert_ne _ id id'), ?(lookup_total_insert_ne _ id id') by done;
    eauto.
  - by intros tx' [= <-].
  - by unfold Transaction.is_active in *; simpl; rewrite Hact.
  - intros _. by rewrite !lookup_total_alt, Ho.
Qed.

Lemma commit_active tx s : Transaction.is_active tx = true →
  JournaledStorage.commit (tx, s) =
    (Ok tt, (tx <| Transaction.state := TransactionState.Committed |>,
     JournaledStorage.mk
       (JournaledStorage.apply_writes (JournaledStorage.pending s !!! Transaction.id tx)
          (JournaledStorage.objects s))
       (JournaledStorage.journal s ++ [JournalEntry.Commit (Transaction.id tx)])
       (delete (Transaction.id tx) (JournaledStorage.pending s)))).
Proof.
  intros Hact. unfold JournaledStorage.commit, Transaction.commit. rewrite Hact. simpl.
  rewrite lookup_total_alt.
  destruct (JournaledStorage.pending s !! Transaction.id tx) eqn:Hp; [done|].
  simpl. rewrite (delete_id _ _ Hp). by destruct s.
Qed.

Lemma recover_entry_commit objs ws id :
  JournaledStorage.recover_entry (objs, ws) (JournalEntry.Commit id)
  = (JournaledStorage.apply_writes (ws !!! id) objs, delete id ws).
Proof.
  simpl. rewrite lookup_total_alt. destruct (ws !! id) eqn:Hw; [done|].
  simpl. by rewrite delete_id.
Qed.

(** Closing a transaction: its writes leave the buffers, the others keep theirs. *)
Lemma sim_finish used w a id tx tx' s' st' :
  simulates used w a → handles w !! id = Some tx →
  Transaction.id tx' = id → Transaction.is_active tx' = false →
  JournaledStorage.pending s' = delete id (JournaledStorage.pending (storage w)) →
  (∀ id', id ≠ id' → (replay (JournaledStorage.journal s')).2 !! id'
                     = (replay (JournaledStorage.journal (storage w))).2 !! id') →
  JournaledStorage.objects s' = (replay (JournaledStorage.journal s')).1 →
  (∀ o, JournaledStorage.objects s' !!! o = st' o) →
  (∀ o, JournaledStorage.objects s' !! o ≠ Some []) →
  simulates used (mk s' (<[id := tx']> (handles w)))
    (AtomicStore.mk st' (delete id (AtomicStore.buffers a))).
Proof.
  intros [S1 S2 S3 S4 S5 S6 S7] Hh Hid Hact Hp Hw Ho Hst Hne.
  constructor; simpl; try done; intros id'; destruct (decide (id = id')) as [<-|Hn];
    rewrite ?Hp, ?lookup_insert_eq, ?lookup_delete_eq, ?lookup_insert_ne, ?lookup_delete_ne,
      ?lookup_total_delete_ne, ?Hw by done; eauto.
  - by intros tx0 [= <-].
  - by rewrite Hact.
  - by intros [].
Qed.

Lemma sim_commit used w a id : simulates used w a →
  simulates used (exec w (Commit id)) (AtomicStore.step a (Commit id)).
Proof.
  intros S. pose proof (sim_buffer _ _ _ S id) as Hb. simpl.
  destruct (handles w !! id) as [tx|] eqn:Hh; rewrite Hb.
  2:{ unfold on_handle. by rewrite Hh. }
  destruct (Transaction.is_active tx) eqn:Hact.
  2:{ erewrite on_handle_refused; [done..|]. unfold JournaledStorage.commit. by rewrite Hact. }
  pose proof (sim_id _ _ _ S _ _ Hh) as Hid.
  unfold on_handle. rewrite Hh, commit_active by done. rewrite Hid.
  assert (Ho := sim_open _ _ _ S id). rewrite Hb in Ho. specialize (Ho ltac:(done)).
  pose proof S as [S1 S2 S3 S4 S5 S6 S7].
  eapply sim_finish; [done..| | | |]; simpl; rewrite ?replay_snoc;
    destruct replay as [objs ws]; rewrite ?recover_entry_commit; simpl in *.
  - intros id' Hne. by rewrite lookup_delete_ne.
  - by rewrite S1, !lookup_total_alt, Ho.
  - intros o. by rewrite apply_writes_total, S2.
  - intros o. by apply apply_writes_nonempty.
Qed.

Lemma sim_rollback used w a id : simulates used w a →
  simulates used (exec w (Rollback id)) (AtomicStore.step a (Rollback id)).
Proof.
  intros S. pose proof (sim_buffer _ _ _ S id) as Hb. simpl.
  destruct (handles w !! id) as [tx|] eqn:Hh.
  2:{ unfold on_handle. rewrite Hh, delete_id by done. by destruct a. }
  destruct (Transaction.is_active tx) eqn:Hact.
  2:{ rewrite delete_id by done. erewrite on_handle_refused; [by destruct a|done|].
      unfold JournaledStorage.rollback. by rewrite Hact. }
  pose proof (sim_id _ _ _ S _ _ Hh) as Hid.
  unfold on_handle. rewrite Hh. unfold JournaledStorage.rollback, Transaction.rollback.
  rewrite Hact. simpl. rewrite Hid.
  eapply sim_finish; try done; apply S.
Qed.

Lemma sim_crash used w a : simulates used w a →
  simulates used (exec w Crash) (AtomicStore.step a Crash).
Proof.
  intros [S1 S2 S3 S4 S5 S6 S7].
  constructor; simpl; rewrite ?recover_objects, ?recover_journal, ?recover_pending, <- ?S1;
    try done.
  - intros id Hs. by apply lookup_empty_is_Some in Hs.
  - intros id [Hs|[Hs|Hs]]; [by apply lookup_empty_is_Some in Hs|by auto|].
    by apply lookup_empty_is_Some in Hs.
Qed.

Lemma run_simulates ops : NoDup (begun ops) → simulates (begun ops) (run ops) (AtomicStore.run ops).
Proof.
  unfold run, AtomicStore.run. induction ops as [|o ops IH] using rev_ind; intros Hnd.
  { constructor; simpl; try done.
    intros id [Hs|[Hs|Hs]]; by apply lookup_empty_is_Some in Hs. }
  unfold begun in *. rewrite omap_app in *. rewrite !foldl_app. simpl.
  apply NoDup_app in Hnd as (Hnd & Hdis & _). specialize (IH Hnd).
  destruct o; simpl in *; rewrite ?app_nil_r.
  - apply sim_begin; [|done]. intros Hin. apply (Hdis id Hin). by left.
  - by apply sim_write.
  - by apply sim_commit.
  - by apply sim_rollback.
  - by apply sim_crash.
Qed.

(** What an open transaction reads, in terms of the abstract store. *)
Lemma sim_read `{UuidFormat} used w a id tx o :
  simulates used w a → handles w !! id = Some tx → Transaction.is_active tx = true →
  JournaledStorage.read tx o (storage w) =
    ok_or (VersionEntry.version_id <$> AtomicStore.read id o a)
      (TransactionError.ObjectNotFound (ObjectId.display o)) ∧
  JournaledStorage.read_data tx o (storage w) =
    ok_or (VersionEntry.data <$> AtomicStore.read id o a)
      (TransactionError.ObjectNotFound (ObjectId.display o)).
Proof.
  intros S Hh Hact. unfold JournaledStorage.read, JournaledStorage.read_data,
    JournaledStorage.own_write, AtomicStore.read.
  rewrite (sim_buffer _ _ _ S), Hh, Hact, (sim_id _ _ _ S _ _ Hh). simpl.
  rewrite last_app, <- head_filter_rev_last, <- (sim_store _ _ _ S o), !lookup_total_alt.
  destruct (JournaledStorage.pending (storage w) !! id) as [ws|]; simpl.
  1: destruct (rfind _ ws); simpl; [done|].
  all: destruct (JournaledStorage.objects (storage w) !! o); done.
Qed.

(** *** The store *)

(** C17: over every history of transactions and crashes (begin, write, commit, rollback,
    crash and recovery, in any interleaving) whose drawn transaction identifiers are
    distinct, the journaled store behaves as an atomic multi-version store: its objects
    hold exactly the versions of committed transactions in commit order, recovering it
    from its journal at any moment gives the same objects, and an open transaction reads
    its own last write, else the last committed version. *)
Theorem journaled_storage_is_atomic `{UuidFormat} (ops : list op) :
  NoDup (begun ops) →
  let s := storage (run ops) in
  let a := AtomicStore.run ops in
  (∀ o, JournaledStorage.objects s !!! o = AtomicStore.store a o) ∧
  (∀ o, JournaledStorage.objects (JournaledStorage.recover s) !!! o = AtomicStore.store a o) ∧
  (∀ o, JournaledStorage.objects (JournaledStorage.from_journal (JournaledStorage.journal s)) !!! o
        = AtomicStore.store a o) ∧
  (∀ id tx o, handles (run ops) !! id = Some tx → Transaction.is_active tx = true →
     JournaledStorage.read_data tx o s =
       ok_or (VersionEntry.data <$> AtomicStore.read id o a)
         (TransactionError.ObjectNotFound (ObjectId.display o)) ∧
     JournaledStorage.read tx o s =
       ok_or (VersionEntry.version_id <$> AtomicStore.read id o a)
         (TransactionError.ObjectNotFound (ObjectId.display o))).
Proof.
  intros Hnd. pose proof (run_simulates ops Hnd) as S. unfold JournaledStorage.from_journal.
  split_and!; [|intros o; rewrite recover_objects; simpl..|].
  - apply S.
  - rewrite <- (sim_objects _ _ _ S). apply S.
  - rewrite <- (sim_objects _ _ _ S). apply S.
  - intros id tx o Hh Hact. by destruct (sim_read _ _ _ _ _ o S Hh Hact).
Qed.

(** A history with a committed, a rolled-back and an open transaction around a crash. *)
Definition tx_of (n : N) : TransactionId.t := TransactionId.mk n.
Definition obj (n : N) : ObjectId.t := ObjectId.from_uuid n.
Definition ver (n : N) : VersionId.t := VersionId.from_uuid n.
Definition sample_history : list op :=
  [Begin (tx_of 1); Begin (tx_of 2); Write (tx_of 1) (ver 1) (obj 1) [10];
   Write (tx_of 2) (ver 2) (obj 1) [20]; Commit (tx_of 1); Crash; Begin (tx_of 3);
   Write (tx_of 3) (ver 3) (obj 1) [30]; Begin (tx_of 4)].
Definition data_in (ops : list op) (o : ObjectId.t) : list (list N) :=
  VersionEntry.data <$> JournaledStorage.objects (storage (run ops)) !!! o.

Lemma journaled_storage_is_atomic_witness :
  data_in sample_history (obj 1) = [[10]] ∧
  (∀ o, JournaledStorage.objects (storage (run sample_history)) !!! o
        = AtomicStore.store (AtomicStore.run sample_history) o).
Proof.
  split; [by vm_compute|].
  apply (@journaled_storage_is_atomic sample_format sample_history).
  refine (bool_decide_eq_true_1 (NoDup (begun sample_history)) _). by vm_compute.
Defined.

(** A transaction that is still open when the store recovers can be committed
    afterwards; the commit reports success, but the transaction's earlier writes are not
    in the store, and the next recovery brings them back. *)
Theorem commit_after_recovery_resurfaces tx s ws :
  Transaction.is_active tx = true →
  (replay (JournaledStorage.journal s)).2 !! Transaction.id tx = Some ws →
  ∃ tx' s', JournaledStorage.commit (tx, JournaledStorage.recover s) = (Ok tt, (tx', s')) ∧
    JournaledStorage.objects s' = JournaledStorage.objects (JournaledStorage.recover s) ∧
    JournaledStorage.objects (JournaledStorage.recover s') =
      JournaledStorage.apply_writes ws (JournaledStorage.objects (JournaledStorage.recover s)).
Proof.
  intros Hact Hw. rewrite commit_active by done. do 2 eexists. split; [done|].
  rewrite !recover_objects, recover_pending, recover_journal. simpl.
  split; [by rewrite lookup_total_empty|]. rewrite replay_snoc.
  destruct replay as [objs wss]. simpl in *. by rewrite Hw.
Qed.

Lemma commit_after_recovery_resurfaces_witness :
  let s := storage (run (take 3 sample_history)) in
  ∃ tx' s', JournaledStorage.commit (Transaction.new (tx_of 1), JournaledStorage.recover s)
      = (Ok tt, (tx', s')) ∧
    JournaledStorage.objects s' = JournaledStorage.objects (JournaledStorage.recover s) ∧
    JournaledStorage.objects (JournaledStorage.recover s') =
      JournaledStorage.apply_writes [PendingWrite.mk (obj 1) (ver 1) [10]]
        (JournaledStorage.objects (JournaledStorage.recover s)).
Proof. apply (commit_after_recovery_resurfaces (Transaction.new (tx_of 1))); by vm_compute. Defined.

(** *** The service *)

(** A call on the service, by one identity, with any transaction. *)
Inductive call :=
| CallRead (tx : Transaction.t) (o : ObjectId.t)
| CallWrite (tx : Transaction.t) (v : VersionId.t) (o : ObjectId.t) (data : list N)
| CallCommit (tx : Transaction.t).

Section service.
Context `{UuidFormat} {B : Type} `{StorageBudget B}.

(** Whether the budget let a call through. *)
Definition admitted {A} (r : result A StorageServiceError.t) : bool :=
  match r with Err (StorageServiceError.Budget _) => false | _ => true end.

Definition serve (eid : ExecutionId.t) (c : call) (s : StorageService.t B)
    : outcome (bool * StorageService.t B) :=
  match c with
  | CallRead tx o => '(r, s) ← StorageService.read eid tx o s; Return (admitted r, s)
  | CallWrite tx v o data =>
      '(r, (_, s)) ← StorageService.write v eid o data (tx, s); Return (admitted r, s)
  | CallCommit tx => '(r, (_, s)) ← StorageService.commit eid (tx, s); Return (admitted r, s)
  end.

(** The number of calls that were let through. *)
Fixpoint serve_all (eid : ExecutionId.t) (cs : list call) (s : StorageService.t B)
    : outcome (N * StorageService.t B) :=
  match cs with
  | [] => Return (0, s)
  | c :: cs =>
      '(b, s) ← serve eid c s;
      '(n, s) ← serve_all eid cs s;
      Return (N.b2n b + n, s)
  end.

(** The operation that a call is charged for. *)
Definition charged_as (c : call) : StorageOperation.t :=
  match c with
  | CallRead _ _ => StorageOperation.Read
  | CallWrite _ _ _ _ => StorageOperation.Write
  | CallCommit _ => StorageOperation.Commit
  end.

(** A call charges its operation once; a refused call leaves the store alone. *)
Lemma serve_charges eid c s res b :
  consume_storage_op eid (charged_as c) (StorageService.budget s) = Return (res, b) →
  ∃ st, serve eid c s = Return (is_ok res, StorageService.mk st b) ∧
    (is_ok res = false → st = StorageService.storage s).
Proof.
  intros Hc. destruct c; simpl in *; unfold StorageService.read, StorageService.write,
    StorageService.commit, StorageService.charge; rewrite Hc; destruct res as [[]|e]; simpl;
    try (by eexists).
  - destruct (JournaledStorage.read _ _ _); by eexists.
  - unfold StorageService.on_storage. destruct (JournaledStorage.write _ _ _ _) as [[?|?] [? ?]];
      by eexists.
  - unfold StorageService.on_storage. destruct (JournaledStorage.commit _) as [[?|?] [? ?]];
      by eexists.
Qed.
End service.

(** The storage service over the kernel enforces the storage budget: whatever
    sequence of reads, writes and commits an identity with [limit] storage operations
    issues, no call panics, and the calls that are let through, added to what was used
    before, never exceed the limit; a call that is refused leaves the store as it was. *)
Theorem storage_service_stays_within_budget `{HashOrder} `{UuidFormat} eid limit used cs
    (s : StorageService.t Kernel.t) :
  account ResourceBudget.storage_ops ResourceUsage.storage_ops eid limit used
    (StorageService.budget s) →
  used ≤ limit → limit < u64_max →
  ∃ n s', serve_all eid cs s = Return (n, s') ∧ used + n ≤ limit ∧
    account ResourceBudget.storage_ops ResourceUsage.storage_ops eid limit (used + n)
      (StorageService.budget s') ∧
    (n = 0 → StorageService.storage s' = StorageService.storage s).
Proof.
  revert used s. induction cs as [|c cs IH]; intros used s Ha Hle Hmax; simpl.
  { exists 0, s. by rewrite N.add_0_r. }
  destruct (account_charge ResourceBudget.storage_ops ResourceUsage.storage_ops eid limit used
    (StorageService.budget s) (consume_storage_op eid (charged_as c) (StorageService.budget s)))
    as (res & k' & Hc & Ha' & Hle'); try done.
  { destruct c; by apply unit_charge_outcome. }
  destruct (serve_charges eid c s res k' Hc) as (st & -> & Hst). simpl.
  destruct (IH _ (StorageService.mk st k') Ha' Hle' Hmax) as (n & s' & -> & Hn & Han & Hzero).
  simpl. exists (N.b2n (is_ok res) + n), s'. split; [done|]. rewrite N.add_assoc.
  destruct (is_ok res); simpl in *; split_and!; try done; intros; [lia|].
  rewrite Hzero by lia. auto.
Qed.

(** Identity 101 may do two storage operations. *)
Definition budgeted_kernel : Kernel.t :=
  sample_state [KOp.CreateIdentity (IdentityMetadata.with_budget
    (ResourceBudget.with_storage_ops (Quantity.new 2) ResourceBudget.unlimited)
    (IdentityMetadata.new (ExecutionId.mk 101) IdentityKind.Component TrustDomain.user "a" 0))].

Lemma storage_service_stays_within_budget_witness :
  let tx := Transaction.new (tx_of 1) in
  let calls := [CallWrite tx (ver 1) (obj 1) [1]; CallRead tx (obj 1); CallCommit tx] in
  ∃ n s', @serve_all sample_format Kernel.t (@kernel_storage_budget canonical_order sample_format)
      (ExecutionId.mk 101) calls (StorageService.mk JournaledStorage.new budgeted_kernel)
      = Return (n, s') ∧ 0 + n ≤ 2 ∧
    account ResourceBudget.storage_ops ResourceUsage.storage_ops (ExecutionId.mk 101) 2 (0 + n)
      (StorageService.budget s') ∧
    (n = 0 → StorageService.storage s' = JournaledStorage.new).
Proof.
  intros tx calls.
  apply (@storage_service_stays_within_budget canonical_order sample_format
    (ExecutionId.mk 101) 2 0 calls (StorageService.mk JournaledStorage.new budgeted_kernel));
    [|lia|by vm_compute].
  eexists _, _. split_and!; by vm_compute.
Defined.

(** *** Access and migration *)

(** Access to an object is granted exactly when the object is registered and the
    capability names it, is held by the caller, and is of the required kind or [Own]. *)
Theorem access_granted_iff cap o kind who c :
  PermissionChecker.check_access cap o kind who c = Ok tt ↔
  is_Some (PermissionChecker.ownership c !! o) ∧ Capability.object_id cap = o ∧
  Capability.holder cap = who ∧
  (Capability.kind cap = CapabilityKind.Own ∨ Capability.kind cap = kind).
Proof.
  unfold PermissionChecker.check_access. rewrite <- not_eq_None_Some.
  repeat case_bool_decide; naive_solver.
Qed.

(** Running migration steps one after the other, stopping at the first error. *)
Definition compose_steps (fs : list SequentialMigrator.step) (data : list N)
    : result (list N) MigrationError.t :=
  foldl (λ r f, match r with Ok d => f d | Err e => Err e end) (Ok data) fs.

Lemma compose_steps_err fs e :
  foldl (λ (r : result (list N) MigrationError.t) (f : SequentialMigrator.step),
           match r with Ok d => f d | Err e => Err e end) (Err e) fs = Err e.
Proof. by induction fs. Qed.

Lemma run_steps_compose m n i data :
  (N.to_nat i + n ≤ length (SequentialMigrator.migrations m))%nat →
  SequentialMigrator.run_steps m i n data =
  compose_steps (take n (drop (N.to_nat i) (SequentialMigrator.migrations m))) data.
Proof.
  revert i data. induction n as [|n IH]; intros i data Hn; [by rewrite take_0|]. simpl.
  destruct (SequentialMigrator.migrations m !! N.to_nat i) as [f|] eqn:Hf.
  2:{ apply lookup_ge_None in Hf. unfold SequentialMigrator.step in *. lia. }
  erewrite drop_S by done. simpl. unfold compose_steps. simpl.
  destruct (f data) as [d|e]; [|by rewrite compose_steps_err].
  rewrite IH by lia. by replace (N.to_nat (i + 1)) with (S (N.to_nat i)) by lia.
Qed.

(** A migration between versions runs exactly the steps registered between them, in
    order, stopping at the first that fails; it is refused exactly when it is a downgrade,
    a version is 0 or past the last registered one, or past one million; the loop never
    lacks a step. *)
Theorem migrate_runs_registered_steps from to data m :
  SequentialMigrator.migrate from to data m =
  if bool_decide (from = to) then Ok data
  else if SequentialMigrator.supports_migration from to m
          && (ObjectSchemaVersion.as_u32 to <=? SequentialMigrator.MAX_REASONABLE_VERSION)
  then compose_steps
         (take (N.to_nat (ObjectSchemaVersion.as_u32 to - ObjectSchemaVersion.as_u32 from))
            (drop (N.to_nat (ObjectSchemaVersion.as_u32 from - 1))
               (SequentialMigrator.migrations m))) data
  else Err (MigrationError.UnsupportedMigration from to).
Proof.
  unfold SequentialMigrator.migrate, SequentialMigrator.supports_migration,
    SequentialMigrator.MAX_REASONABLE_VERSION.
  destruct from as [f], to as [g]. simpl. case_bool_decide as Heq; [done|].
  assert (f ≠ g) by congruence.
  destruct (N.ltb_spec g f); [done|]. simpl.
  destruct (N.ltb_spec 1000000 f), (N.ltb_spec 1000000 g), (N.leb_spec g 1000000); simpl;
    rewrite ?andb_false_r; try lia; try done.
  destruct (N.ltb_spec f 1), (N.ltb_spec 0 f); simpl; try lia; try done.
  destruct (N.ltb_spec (len (SequentialMigrator.migrations m) + 1) g),
    (N.leb_spec g (len (SequentialMigrator.migrations m) + 1)); simpl; try lia; try done.
  unfold len in *. rewrite run_steps_compose by (rewrite !N2Nat.inj_sub; lia).
  by replace (g - 1 - (f - 1)) with (g - f) by lia.
Qed.
End StorageSpec.
