(* ===== verification/BlockStore.v ===== *)
(** * Block devices, the block store and the persistent file system

    [hal/src/block_device.rs] and [services_storage/src/failing_device.rs],
    [block_storage.rs] and [persistent_fs.rs].  The trait [BlockDevice] is a class; JSON
    and the CRC come from third-party crates ([serde_json], [crc32fast]) and are the
    parameters of the class [StorageJson]. *)

From S2P Require Import Prelude CoreTypes Debug Storage.
Open Scope string_scope.
Open Scope list_scope.
Open Scope N_scope.

(** ** Block devices ([hal/src/block_device.rs]) *)

(* hal/src/block_device.rs:10-11 BLOCK_SIZE *)
Definition BLOCK_SIZE : N := 4096.
(** [[0u8; BLOCK_SIZE]]. *)
Definition zero_block : list N := replicate (N.to_nat BLOCK_SIZE) 0.

Module BlockError.
(* hal/src/block_device.rs:13-24 BlockError *)
Inductive t := OutOfBounds | IoError | NotReady | InvalidSize.
#[global] Instance eq_dec : EqDecision t.
Proof. solve_decision. Defined.
(* hal/src/block_device.rs:26-35 Display for BlockError *)
Definition display (e : t) : string :=
  match e with
  | OutOfBounds => "block index out of bounds"
  | IoError => "I/O error"
  | NotReady => "device not ready"
  | InvalidSize => "invalid block size"
  end.
Definition debug (e : t) : string :=
  match e with
  | OutOfBounds => "OutOfBounds"
  | IoError => "IoError"
  | NotReady => "NotReady"
  | InvalidSize => "InvalidSize"
  end.
End BlockError.

(** The trait [BlockDevice].  [read_block] is given the caller's buffer and returns its
    new contents. *)
(* hal/src/block_device.rs:37-81 BlockDevice *)
Class BlockDevice (D : Type) := {
  block_count : D → N;
  read_block : N → list N → D → result (list N) BlockError.t * D;
  write_block : N → list N → D → result unit BlockError.t * D;
  flush : D → result unit BlockError.t * D
}.

(** [buffer[..n].copy_from_slice(src)] with [n] the length of [src]. *)
Definition copy_from_slice (src buffer : list N) : list N := src ++ drop (length src) buffer.

Module RamDisk.
(* hal/src/block_device.rs:83-90 RamDisk *)
Record t := mk { blocks : list (list N) }.
(* hal/src/block_device.rs:94-102 RamDisk::new *)
Definition new (block_count : N) : t := mk (replicate (N.to_nat block_count) zero_block).
(* hal/src/block_device.rs:104-108 RamDisk::with_capacity_mb *)
Definition with_capacity_mb (mb : N) : outcome t :=
  kb ← mul_u64 mb 1024; b ← mul_u64 kb 1024; Return (new (b / BLOCK_SIZE)).
(* hal/src/block_device.rs:113-115 RamDisk::block_count *)
Definition block_count (d : t) : N := len (blocks d).
(* hal/src/block_device.rs:117-128 RamDisk::read_block *)
Definition read_block (block_idx : N) (buffer : list N) (d : t)
    : result (list N) BlockError.t * t :=
  if block_count d <=? block_idx then (Err BlockError.OutOfBounds, d)
  else if len buffer <? BLOCK_SIZE then (Err BlockError.InvalidSize, d)
  else (Ok (copy_from_slice (blocks d !!! N.to_nat block_idx) buffer), d).
(* hal/src/block_device.rs:130-141 RamDisk::write_block *)
Definition write_block (block_idx : N) (buffer : list N) (d : t)
    : result unit BlockError.t * t :=
  if block_count d <=? block_idx then (Err BlockError.OutOfBounds, d)
  else if len buffer <? BLOCK_SIZE then (Err BlockError.InvalidSize, d)
  else (Ok tt, mk (<[N.to_nat block_idx := take (N.to_nat BLOCK_SIZE) buffer]> (blocks d))).
End RamDisk.

(* hal/src/block_device.rs:111-142 BlockDevice for RamDisk *)
#[global] Instance ram_disk : BlockDevice RamDisk.t := {|
  block_count := RamDisk.block_count;
  read_block := RamDisk.read_block;
  write_block := RamDisk.write_block;
  flush d := (Ok tt, d)
|}.

Module FailurePolicy.
(* services_storage/src/failing_device.rs:10-21 FailurePolicy *)
Inductive t :=
| Never
| AfterWrites (n : N)
| OnBlocks (blocks : list N)
| AfterWritesToBlocks (count : N) (blocks : list N).
End FailurePolicy.

Module FailingBlockDevice.
Section with_device.
Context {D : Type} `{BlockDevice D}.

(* services_storage/src/failing_device.rs:23-29 FailingBlockDevice *)
Record t := mk {
  inner : D;
  policy : FailurePolicy.t;
  write_count : N;
  block_write_counts : gmap N N
}.
#[global] Instance rebuild_t : Rebuild t := λ d,
  mk (inner d) (policy d) (write_count d) (block_write_counts d).

(* services_storage/src/failing_device.rs:32-40 FailingBlockDevice::new *)
Definition new (inner : D) (policy : FailurePolicy.t) : t := mk inner policy 0 ∅.

(** [block_write_counts.entry(b).or_insert(0)]. *)
Definition entry_or_zero (b : N) (m : gmap N N) : gmap N N := <[b := m !!! b]> m.

(* services_storage/src/failing_device.rs:42-57 FailingBlockDevice::should_fail *)
Definition should_fail (block_idx : N) (d : t) : bool * t :=
  match policy d with
  | FailurePolicy.Never => (false, d)
  | FailurePolicy.AfterWrites n => (n <=? write_count d, d)
  | FailurePolicy.OnBlocks blocks => (bool_decide (block_idx ∈ blocks), d)
  | FailurePolicy.AfterWritesToBlocks count blocks =>
      if bool_decide (block_idx ∈ blocks)
      then let m := entry_or_zero block_idx (block_write_counts d) in
           (count <=? m !!! block_idx, d <| block_write_counts := m |>)
      else (false, d)
  end.
(* services_storage/src/failing_device.rs:74-79 FailingBlockDevice::set_policy *)
Definition set_policy (p : FailurePolicy.t) (d : t) : t :=
  d <| policy := p |> <| write_count := 0 |> <| block_write_counts := ∅ |>.
(* services_storage/src/failing_device.rs:87-89 FailingBlockDevice::read_block *)
Definition read_block (block_idx : N) (buffer : list N) (d : t)
    : result (list N) BlockError.t * t :=
  let '(r, i) := BlockStore.read_block block_idx buffer (inner d) in (r, d <| inner := i |>).
(** The counters of a write that goes ahead.  They count writes, and overflow is out of
    reach. *)
(* services_storage/src/failing_device.rs:96-101 FailingBlockDevice::write_block *)
Definition count_write (block_idx : N) (d : t) : t :=
  let d := d <| write_count ::= λ n, n + 1 |> in
  match policy d with
  | FailurePolicy.AfterWritesToBlocks _ blocks =>
      if bool_decide (block_idx ∈ blocks)
      then d <| block_write_counts ::= λ m, <[block_idx := m !!! block_idx + 1]> m |>
      else d
  | _ => d
  end.
(* services_storage/src/failing_device.rs:91-104 FailingBlockDevice::write_block *)
Definition write_block (block_idx : N) (buffer : list N) (d : t) : result unit BlockError.t * t :=
  let '(fail, d) := should_fail block_idx d in
  if fail : bool then (Err BlockError.IoError, d)
  else
    let d := count_write block_idx d in
    let '(r, i) := BlockStore.write_block block_idx buffer (inner d) in
    (r, d <| inner := i |>).
(* services_storage/src/failing_device.rs:106-112 FailingBlockDevice::flush *)
Definition flush (d : t) : result unit BlockError.t * t :=
  let fails := match policy d with
               | FailurePolicy.AfterWrites n => n <=? write_count d
               | _ => false
               end in
  if fails : bool then (Err BlockError.IoError, d)
  else let '(r, i) := BlockStore.flush (inner d) in (r, d <| inner := i |>).
End with_device.
Arguments t D : clear implicits.
End FailingBlockDevice.

(* services_storage/src/failing_device.rs:82-113 BlockDevice for FailingBlockDevice *)
#[global] Instance failing_device `{BlockDevice D} : BlockDevice (FailingBlockDevice.t D) := {|
  block_count d := block_count (FailingBlockDevice.inner d);
  read_block := FailingBlockDevice.read_block;
  write_block := FailingBlockDevice.write_block;
  flush := FailingBlockDevice.flush
|}.

(** ** On-disk structures ([block_storage.rs]) *)

Module Superblock.
(* services_storage/src/block_storage.rs:24-45 Superblock *)
Record t := mk {
  magic : N;
  version : N;
  total_blocks : N;
  bitmap_start : N;
  bitmap_blocks : N;
  data_start : N;
  commit_log_start : N;
  commit_log_blocks : N;
  commit_sequence : N
}.
#[global] Instance rebuild_t : Rebuild t := λ s,
  mk (magic s) (version s) (total_blocks s) (bitmap_start s) (bitmap_blocks s) (data_start s)
     (commit_log_start s) (commit_log_blocks s) (commit_sequence s).
End Superblock.

(* services_storage/src/block_storage.rs:47-47 SUPERBLOCK_MAGIC *)
Definition SUPERBLOCK_MAGIC : N := 0x50414E4447454E00.
(* services_storage/src/block_storage.rs:48-48 STORAGE_VERSION *)
Definition STORAGE_VERSION : N := 2.

Module AllocationEntry.
(* services_storage/src/block_storage.rs:110-117 AllocationEntry *)
Record t := mk {
  object_id : ObjectId.t;
  version_id : VersionId.t;
  block_idx : N;
  size_bytes : N
}.
End AllocationEntry.

Module CommitRecord.
(* services_storage/src/block_storage.rs:50-61 CommitRecord *)
Record t := mk {
  transaction_id : TransactionId.t;
  sequence : N;
  allocations : list AllocationEntry.t;
  checksum : N
}.
#[global] Instance rebuild_t : Rebuild t := λ r,
  mk (transaction_id r) (sequence r) (allocations r) (checksum r).
End CommitRecord.

Module DirectoryEntry.
(* services_storage/src/persistent_fs.rs:16-36 DirectoryEntry *)
Record t := new { name : string; object_id : ObjectId.t; kind : ObjectKind.t }.
End DirectoryEntry.

Module DirectoryMetadata.
(* services_storage/src/persistent_fs.rs:49-58 DirectoryMetadata *)
Record t := mk { created_at : N; modified_at : N; owner : string }.
#[global] Instance rebuild_t : Rebuild t := λ m, mk (created_at m) (modified_at m) (owner m).
End DirectoryMetadata.

Module PersistentDirectory.
(* services_storage/src/persistent_fs.rs:38-47 PersistentDirectory *)
Record t := mk {
  entries : gmap string DirectoryEntry.t;
  parent : option ObjectId.t;
  metadata : DirectoryMetadata.t
}.
#[global] Instance rebuild_t : Rebuild t := λ d, mk (entries d) (parent d) (metadata d).
(* services_storage/src/persistent_fs.rs:61-72 PersistentDirectory::new *)
Definition new (owner : string) (timestamp : N) : t :=
  mk ∅ None (DirectoryMetadata.mk timestamp timestamp owner).
Definition touch (timestamp : N) (d : t) : t :=
  d <| metadata ::= λ m, m <| DirectoryMetadata.modified_at := timestamp |> |>.
(* services_storage/src/persistent_fs.rs:74-78 PersistentDirectory::add_entry *)
Definition add_entry (name : string) (entry : DirectoryEntry.t) (timestamp : N) (d : t) : t :=
  touch timestamp (d <| entries ::= <[name := entry]> |>).
(* services_storage/src/persistent_fs.rs:80-87 PersistentDirectory::remove_entry *)
Definition remove_entry (name : string) (timestamp : N) (d : t) : option DirectoryEntry.t * t :=
  let entry := entries d !! name in
  let d := d <| entries ::= delete name |> in
  (entry, if bool_decide (is_Some entry) then touch timestamp d else d).
(* services_storage/src/persistent_fs.rs:89-92 PersistentDirectory::get_entry *)
Definition get_entry (name : string) (d : t) : option DirectoryEntry.t := entries d !! name.
(** A [BTreeMap] iterates in key order. *)
(* services_storage/src/persistent_fs.rs:94-100 PersistentDirectory::list_entries *)
Definition list_entries (d : t) : list (string * DirectoryEntry.t) :=
  btree_iter String.leb (entries d).
End PersistentDirectory.

(** [serde_json] on the three structures, with the [Debug] texts of its errors, and
    [crc32fast::hash]. *)
Class StorageJson := {
  superblock_to_vec : Superblock.t → option (list N);
  superblock_from_slice : list N → option Superblock.t;
  record_to_vec : CommitRecord.t → option (list N);
  record_from_slice : list N → option CommitRecord.t;
  directory_to_vec : PersistentDirectory.t → option (list N);
  directory_from_slice : list N → option PersistentDirectory.t;
  to_vec_error : PersistentDirectory.t → string;
  from_slice_error : list N → string;
  crc32 : list N → N
}.

Module StorageRecoveryReport.
(* services_storage/src/block_storage.rs:95-108 StorageRecoveryReport *)
Record t := mk {
  recovered_commits : N;
  discarded_transactions : N;
  last_sequence : N;
  success : bool;
  error : option string
}.
End StorageRecoveryReport.

Module BlockStorageError.
(* services_storage/src/block_storage.rs:142-149 BlockStorageError *)
Inductive t :=
| BlockError (e : BlockError.t)
| InvalidSuperblock
| NoFreeSpace
| ObjectNotFound
| SerializationError.
Definition debug (e : t) : string :=
  match e with
  | BlockError e => Debug.tuple1 "BlockError" (BlockError.debug e)
  | InvalidSuperblock => "InvalidSuperblock"
  | NoFreeSpace => "NoFreeSpace"
  | ObjectNotFound => "ObjectNotFound"
  | SerializationError => "SerializationError"
  end.
(* services_storage/src/block_storage.rs:157-166 From<BlockStorageError> for TransactionError *)
Definition to_transaction_error (e : t) : TransactionError.t :=
  match e with
  | ObjectNotFound => TransactionError.ObjectNotFound "object not found"
  | _ => TransactionError.StorageError "block storage error"
  end.
(** [map_err(|e| TransactionError::StorageError(format!("{:?}", e)))]. *)
Definition to_storage_error (e : t) : TransactionError.t := TransactionError.StorageError (debug e).
End BlockStorageError.

(** ** Commit records *)

Module Records.
Section with_json.
Context `{StorageJson}.
(* services_storage/src/block_storage.rs:80-86 CommitRecord::compute_checksum *)
Definition compute_checksum (r : CommitRecord.t) : N :=
  crc32 (default [] (record_to_vec (r <| CommitRecord.checksum := 0 |>))).
(* services_storage/src/block_storage.rs:64-78 CommitRecord::new *)
Definition new (transaction_id : TransactionId.t) (sequence : N)
    (allocations : list AllocationEntry.t) : CommitRecord.t :=
  let record := CommitRecord.mk transaction_id sequence allocations 0 in
  record <| CommitRecord.checksum := compute_checksum record |>.
(* services_storage/src/block_storage.rs:88-92 CommitRecord::is_valid *)
Definition is_valid (r : CommitRecord.t) : bool := compute_checksum r =? CommitRecord.checksum r.
End with_json.
End Records.

(** ** The block store *)

(** [(a..b)] as a list. *)
Definition range (a b : N) : list N := (λ i, a + N.of_nat i) <$> seq 0 (N.to_nat (b - a)).

(** The bytes before the first zero byte: [block[..json_end]]. *)
Fixpoint until_zero (block : list N) : list N :=
  match block with
  | [] => []
  | b :: block => if b =? 0 then [] else b :: until_zero block
  end.

Module BlockStorage.
Section with_device.
Context {D : Type} `{BlockDevice D} `{StorageJson} `{UuidFormat}.

(** [free_blocks] is a [BTreeSet<u64>], kept as its ascending list of elements. *)
(* services_storage/src/block_storage.rs:119-133 BlockStorage *)
Record t := mk {
  device : D;
  superblock : Superblock.t;
  allocations : gmap (ObjectId.t * VersionId.t) AllocationEntry.t;
  latest_versions : gmap ObjectId.t VersionId.t;
  free_blocks : list N;
  pending : gmap TransactionId.t (list PendingWrite.t);
  recovery_report : option StorageRecoveryReport.t
}.
#[global] Instance rebuild_t : Rebuild t := λ s,
  mk (device s) (superblock s) (allocations s) (latest_versions s) (free_blocks s) (pending s)
     (recovery_report s).

(** [BTreeSet::remove]. *)
Definition set_remove (b : N) (l : list N) : list N := filter (λ x, x ≠ b) l.

(** An operation on the device, its error converted by [?]. *)
Definition on_device {A} (f : D → result A BlockError.t * D) (s : t)
    : outcome (result A BlockStorageError.t * t) :=
  let '(r, d) := f (device s) in
  Return (map_err BlockStorageError.BlockError r, s <| device := d |>).

(** [let mut block = [0u8; BLOCK_SIZE]; block[..n].copy_from_slice(&bytes)]. *)
Definition padded (bytes : list N) : list N := copy_from_slice bytes zero_block.

(* services_storage/src/block_storage.rs:367-379 BlockStorage::write_superblock *)
Definition write_superblock (s : t) : outcome (result unit BlockStorageError.t * t) :=
  match superblock_to_vec (superblock s) with
  | None => Return (Err BlockStorageError.SerializationError, s)
  | Some sb_json =>
      if BLOCK_SIZE <? len sb_json then Return (Err BlockStorageError.InvalidSuperblock, s)
      else
        try! _, s := on_device (write_block 0 (padded sb_json)) s in
        try! _, s := on_device flush s in
        Return (Ok tt, s)
  end.

(** The layout that [format] computes from the size of the device. *)
(* services_storage/src/block_storage.rs:171-204 BlockStorage::format *)
Definition layout (total_blocks : N) : outcome (result Superblock.t BlockStorageError.t) :=
  fifth ← mul_u64 total_blocks 5;
  let commit_log_blocks := N.min (N.max (fifth / 100) 1) 256 in
  let bitmap_start := 1 + commit_log_blocks in
  if total_blocks <=? bitmap_start then Return (Err BlockStorageError.InvalidSuperblock)
  else
    let remaining_after_log := total_blocks - bitmap_start in
    let bitmap_blocks := N.max (remaining_after_log / 10) 1 in
    let data_start := bitmap_start + bitmap_blocks in
    if total_blocks <=? data_start then Return (Err BlockStorageError.InvalidSuperblock)
    else Return (Ok (Superblock.mk SUPERBLOCK_MAGIC STORAGE_VERSION total_blocks bitmap_start
                       bitmap_blocks data_start 1 commit_log_blocks 0)).
(* services_storage/src/block_storage.rs:169-229 BlockStorage::format *)
Definition format (d : D) : outcome (result t BlockStorageError.t) :=
  r ← layout (block_count d);
  match r with
  | Err e => Return (Err e)
  | Ok sb =>
      match superblock_to_vec sb with
      | None => Return (Err BlockStorageError.SerializationError)
      | Some sb_json =>
          if BLOCK_SIZE <? len sb_json then Return (Err BlockStorageError.InvalidSuperblock)
          else
            match write_block 0 (padded sb_json) d with
            | (Err e, _) => Return (Err (BlockStorageError.BlockError e))
            | (Ok _, d) =>
                match flush d with
                | (Err e, _) => Return (Err (BlockStorageError.BlockError e))
                | (Ok _, d) =>
                    Return (Ok (mk d sb ∅ ∅
                      (range (Superblock.data_start sb) (Superblock.total_blocks sb)) ∅ None))
                end
            end
      end
  end.

(** [usize::div_ceil] of a size by the block size. *)
Definition blocks_for (size_bytes : N) : N := div_ceil size_bytes BLOCK_SIZE.

(** Entering an allocation in the two indexes. *)
(* services_storage/src/block_storage.rs:544-549 BlockStorage::commit *)
Definition index_allocation (s : t) (alloc : AllocationEntry.t) : t :=
  s <| allocations ::= <[(AllocationEntry.object_id alloc, AllocationEntry.version_id alloc) := alloc]> |>
    <| latest_versions ::= <[AllocationEntry.object_id alloc := AllocationEntry.version_id alloc]> |>.
(* services_storage/src/block_storage.rs:288-300 BlockStorage::perform_recovery *)
Definition recover_allocation (s : t) (alloc : AllocationEntry.t) : outcome t :=
  let s := index_allocation s alloc in
  fold_outcome (λ s j,
    b ← add_u64 (AllocationEntry.block_idx alloc) j;
    Return (s <| free_blocks ::= set_remove b |>))
    (range 0 (blocks_for (AllocationEntry.size_bytes alloc))) s.

(** The counters of [perform_recovery]: commits recovered, transactions discarded, last
    sequence. *)
Definition counters : Type := N * N * N.
(* services_storage/src/block_storage.rs:273-314 BlockStorage::perform_recovery *)
Definition recover_slot (acc : t * counters) (i : N) : outcome (t * counters) :=
  let '(s, (recovered, discarded, last)) := acc in
  block_idx ← add_u64 (Superblock.commit_log_start (superblock s)) i;
  match read_block block_idx zero_block (device s) with
  | (Err _, d) => Return (s <| device := d |>, (recovered, discarded + 1, last))
  | (Ok block, d) =>
      let s := s <| device := d |> in
      let json := until_zero block in
      if len json =? 0 then Return (s, (recovered, discarded, last))
      else
        match record_from_slice json with
        | None => Return (s, (recovered, discarded, last))
        | Some record =>
            if Records.is_valid record && (last <? CommitRecord.sequence record)
            then
              s ← fold_outcome recover_allocation (CommitRecord.allocations record) s;
              Return (s, (recovered + 1, discarded, CommitRecord.sequence record))
            else Return (s, (recovered, discarded + 1, last))
        end
  end.
(* services_storage/src/block_storage.rs:266-323 BlockStorage::perform_recovery *)
Definition perform_recovery (s : t) : outcome (StorageRecoveryReport.t * t) :=
  '(s, (recovered, discarded, last)) ←
    fold_outcome recover_slot (range 0 (Superblock.commit_log_blocks (superblock s))) (s, (0, 0, 0));
  Return (StorageRecoveryReport.mk recovered discarded last true None, s).
(* services_storage/src/block_storage.rs:231-264 BlockStorage::open *)
Definition open (d : D) : outcome (result t BlockStorageError.t) :=
  match read_block 0 zero_block d with
  | (Err e, _) => Return (Err (BlockStorageError.BlockError e))
  | (Ok block, d) =>
      match superblock_from_slice (until_zero block) with
      | None => Return (Err BlockStorageError.InvalidSuperblock)
      | Some sb =>
          if negb (Superblock.magic sb =? SUPERBLOCK_MAGIC)
          then Return (Err BlockStorageError.InvalidSuperblock)
          else
            let storage :=
              mk d sb ∅ ∅ (range (Superblock.data_start sb) (Superblock.total_blocks sb)) ∅ None in
            '(report, storage) ← perform_recovery storage;
            Return (Ok (storage <| recovery_report := Some report |>))
      end
  end.

(* services_storage/src/block_storage.rs:330-365 BlockStorage::write_commit_record *)
Definition write_commit_record (transaction_id : TransactionId.t)
    (allocations : list AllocationEntry.t) (s : t)
    : outcome (result unit BlockStorageError.t * t) :=
  sequence ← add_u64 (Superblock.commit_sequence (superblock s)) 1;
  let s := s <| superblock ::= λ sb, sb <| Superblock.commit_sequence := sequence |> |> in
  match record_to_vec (Records.new transaction_id sequence allocations) with
  | None => Return (Err BlockStorageError.SerializationError, s)
  | Some record_json =>
      if BLOCK_SIZE <? len record_json
      then Return (Err BlockStorageError.SerializationError, s)
      else if Superblock.commit_log_blocks (superblock s) =? 0 then Panic
      else
        let log_slot := sequence mod Superblock.commit_log_blocks (superblock s) in
        commit_block_idx ← add_u64 (Superblock.commit_log_start (superblock s)) log_slot;
        try! _, s := on_device (write_block commit_block_idx (padded record_json)) s in
        try! _, s := on_device flush s in
        try! _, s := write_superblock s in
        Return (Ok tt, s)
  end.

(** The loop of [allocate_blocks]: take the smallest free block, [n] times. *)
Fixpoint take_free (n : nat) (free : list N) : list N * list N :=
  match n with
  | O => ([], free)
  | S n =>
      match free with
      | [] => take_free n free
      | block :: _ =>
          let '(allocated, free') := take_free n (set_remove block free) in
          (block :: allocated, free')
      end
  end.
(* services_storage/src/block_storage.rs:381-397 BlockStorage::allocate_blocks *)
Definition allocate_blocks (size_bytes : N) (s : t)
    : outcome (result (list N) BlockStorageError.t * t) :=
  let blocks_needed := blocks_for size_bytes in
  if len (free_blocks s) <? blocks_needed then Return (Err BlockStorageError.NoFreeSpace, s)
  else
    let '(allocated, free) := take_free (N.to_nat blocks_needed) (free_blocks s) in
    Return (Ok allocated, s <| free_blocks := free |>).

(** The loop of [write_data], with the part of the data that is left. *)
Fixpoint write_chunks (blocks : list N) (data : list N) (s : t)
    : outcome (result unit BlockStorageError.t * t) :=
  match blocks with
  | [] => Return (Ok tt, s)
  | block_idx :: blocks =>
      let chunk := take (N.to_nat BLOCK_SIZE) data in
      try! _, s := on_device (write_block block_idx (padded chunk)) s in
      write_chunks blocks (drop (N.to_nat BLOCK_SIZE) data) s
  end.
(* services_storage/src/block_storage.rs:399-411 BlockStorage::write_data *)
Definition write_data (blocks : list N) (data : list N) (s : t)
    : outcome (result unit BlockStorageError.t * t) :=
  try! _, s := write_chunks blocks data s in
  try! _, s := on_device flush s in
  Return (Ok tt, s).

(* services_storage/src/block_storage.rs:413-430 BlockStorage::read_data *)
Fixpoint read_data (blocks : list N) (remaining : N) (s : t)
    : outcome (result (list N) BlockStorageError.t * t) :=
  match blocks with
  | [] => Return (Ok [], s)
  | block_idx :: blocks =>
      try! block, s := on_device (read_block block_idx zero_block) s in
      let chunk_size := N.min remaining BLOCK_SIZE in
      let chunk := take (N.to_nat chunk_size) block in
      if remaining - chunk_size =? 0 then Return (Ok chunk, s)
      else
        try! rest, s := read_data blocks (remaining - chunk_size) s in
        Return (Ok (chunk ++ rest), s)
  end.

(** Keys of the pending map are ordered by the bytes of the UUID, that is, as numbers. *)
Definition tx_leb (a b : TransactionId.t) : bool :=
  TransactionId.as_uuid a <=? TransactionId.as_uuid b.
(* services_storage/src/block_storage.rs:432-460 BlockStorage::read_object_data *)
Definition read_object_data (o : ObjectId.t) (v : VersionId.t) (s : t)
    : outcome (result (list N) BlockStorageError.t * t) :=
  let matches w := bool_decide (PendingWrite.object_id w = o ∧ PendingWrite.version_id w = v) in
  match omap (λ e, rfind matches e.2) (btree_iter tx_leb (pending s)) with
  | entry :: _ => Return (Ok (PendingWrite.data entry), s)
  | [] =>
      match allocations s !! (o, v) with
      | None => Return (Err BlockStorageError.ObjectNotFound, s)
      | Some entry =>
          let blocks_needed := blocks_for (AllocationEntry.size_bytes entry) in
          last ← add_u64 (AllocationEntry.block_idx entry) blocks_needed;
          read_data (range (AllocationEntry.block_idx entry) last)
            (AllocationEntry.size_bytes entry) s
      end
  end.

(** *** The trait [TransactionalStorage] *)

(* services_storage/src/block_storage.rs:464-466 BlockStorage::begin_transaction *)
Definition begin_transaction (drawn : TransactionId.t) (s : t)
    : result Transaction.t TransactionError.t * t := (Ok (Transaction.new drawn), s).
(* services_storage/src/block_storage.rs:468-485 BlockStorage::read *)
Definition read (tx : Transaction.t) (o : ObjectId.t) (s : t)
    : result VersionId.t TransactionError.t :=
  if negb (Transaction.is_active tx) then Err TransactionError.AlreadyFinalized
  else
    match
      ws ← pending s !! Transaction.id tx;
      rfind (λ w, bool_decide (PendingWrite.object_id w = o)) ws
    with
    | Some w => Ok (PendingWrite.version_id w)
    | None => ok_or (latest_versions s !! o)
                (TransactionError.ObjectNotFound (ObjectId.display o))
    end.
(* services_storage/src/block_storage.rs:487-507 BlockStorage::write *)
Definition write (drawn : VersionId.t) (o : ObjectId.t) (data : list N) (ts : Transaction.t * t)
    : result VersionId.t TransactionError.t * (Transaction.t * t) :=
  let '(tx, s) := ts in
  if negb (Transaction.is_active tx) then (Err TransactionError.AlreadyFinalized, (tx, s))
  else
    (Ok drawn, (tx, s <| pending ::=
       JournaledStorage.push_entry (Transaction.id tx) (PendingWrite.mk o drawn data) |>)).

(** One write of a commit: its blocks, its data, its allocation. *)
(* services_storage/src/block_storage.rs:519-537 BlockStorage::commit *)
Definition store_write (w : PendingWrite.t) (s : t)
    : outcome (result AllocationEntry.t BlockStorageError.t * t) :=
  let size_bytes := len (PendingWrite.data w) in
  try! blocks, s := allocate_blocks size_bytes s in
  match blocks with
  | [] => Panic
  | first_block :: _ =>
      try! _, s := write_data blocks (PendingWrite.data w) s in
      Return (Ok (AllocationEntry.mk (PendingWrite.object_id w) (PendingWrite.version_id w)
                    first_block size_bytes), s)
  end.
Fixpoint store_writes (ws : list PendingWrite.t) (s : t)
    : outcome (result (list AllocationEntry.t) BlockStorageError.t * t) :=
  match ws with
  | [] => Return (Ok [], s)
  | w :: ws =>
      try! alloc, s := store_write w s in
      try! allocs, s := store_writes ws s in
      Return (Ok (alloc :: allocs), s)
  end.
(* services_storage/src/block_storage.rs:514-550 BlockStorage::commit *)
Definition commit_pending (id : TransactionId.t) (ws : list PendingWrite.t) (s : t)
    : outcome (result unit BlockStorageError.t * t) :=
  try! allocs, s := store_writes ws s in
  try! _, s := write_commit_record id allocs s in
  Return (Ok tt, foldl index_allocation s allocs).
(* services_storage/src/block_storage.rs:509-554 BlockStorage::commit *)
Definition commit (ts : Transaction.t * t)
    : outcome (result unit TransactionError.t * (Transaction.t * t)) :=
  let '(tx, s) := ts in
  if negb (Transaction.is_active tx) then Return (Err TransactionError.AlreadyFinalized, (tx, s))
  else
    '(r, s) ←
      match pending s !! Transaction.id tx with
      | Some ws => commit_pending (Transaction.id tx) ws (s <| pending ::= delete (Transaction.id tx) |>)
      | None => Return (Ok tt, s)
      end;
    match r with
    | Err e => Return (Err (BlockStorageError.to_storage_error e), (tx, s))
    | Ok _ => let '(r, tx) := Transaction.commit tx in Return (r, (tx, s))
    end.
(* services_storage/src/block_storage.rs:556-565 BlockStorage::rollback *)
Definition rollback (ts : Transaction.t * t)
    : result unit TransactionError.t * (Transaction.t * t) :=
  let '(tx, s) := ts in
  if negb (Transaction.is_active tx) then (Err TransactionError.AlreadyFinalized, (tx, s))
  else
    let s := s <| pending ::= delete (Transaction.id tx) |> in
    (Ok tt, ((Transaction.rollback tx).2, s)).
End with_device.
Arguments t D : clear implicits.
End BlockStorage.

(* services_storage/src/block_storage.rs:463-566 TransactionalStorage for BlockStorage *)
#[global] Instance block_storage `{BlockDevice D} `{StorageJson} `{UuidFormat}
    : TransactionalStorage (BlockStorage.t D) := {|
  begin_transaction d s := Return (BlockStorage.begin_transaction d s);
  read := BlockStorage.read;
  write d o data ts := Return (BlockStorage.write d o data ts);
  commit := BlockStorage.commit;
  rollback ts := Return (BlockStorage.rollback ts)
|}.

(** ** The persistent file system ([persistent_fs.rs]) *)

Module PersistentFilesystem.
Section with_device.
Context {D : Type} `{BlockDevice D} `{StorageJson} `{UuidFormat}.

(* services_storage/src/persistent_fs.rs:103-107 PersistentFilesystem *)
Record t := mk { storage : BlockStorage.t D; root_dir_id : ObjectId.t }.
#[global] Instance rebuild_t : Rebuild t := λ f, mk (storage f) (root_dir_id f).

(** The identifiers drawn for one transaction with one write. *)
Definition draw : Type := TransactionId.t * VersionId.t.

(** Begin, write and commit, each with [?]. *)
(* services_storage/src/persistent_fs.rs:176-178 PersistentFilesystem::write_directory *)
Definition put (drawn : draw) (o : ObjectId.t) (data : list N) (s : BlockStorage.t D)
    : outcome (result VersionId.t TransactionError.t * BlockStorage.t D) :=
  match BlockStorage.begin_transaction drawn.1 s with
  | (Err e, s) => Return (Err e, s)
  | (Ok tx, s) =>
      match BlockStorage.write drawn.2 o data (tx, s) with
      | (Err e, (_, s)) => Return (Err e, s)
      | (Ok version_id, (tx, s)) =>
          '(r, (_, s)) ← BlockStorage.commit (tx, s);
          Return (map_ok (λ _, version_id) r, s)
      end
  end.

(** Begin, read the latest version, and read its data. *)
(* services_storage/src/persistent_fs.rs:255-264 PersistentFilesystem::read_file *)
Definition get (drawn : TransactionId.t) (o : ObjectId.t) (s : BlockStorage.t D)
    : outcome (result (list N) TransactionError.t * BlockStorage.t D) :=
  match BlockStorage.begin_transaction drawn s with
  | (Err e, s) => Return (Err e, s)
  | (Ok tx, s) =>
      match BlockStorage.read tx o s with
      | Err e => Return (Err e, s)
      | Ok version_id =>
          '(r, s) ← BlockStorage.read_object_data o version_id s;
          Return (map_err (λ e, TransactionError.StorageError
                            ("read data failed: " +:+ BlockStorageError.debug e)) r, s)
      end
  end.

Definition serialize (dir : PersistentDirectory.t) : result (list N) TransactionError.t :=
  ok_or (directory_to_vec dir)
    (TransactionError.StorageError ("serialize failed: " +:+ to_vec_error dir)).

(** An operation of the store, inside the file system. *)
Definition on_storage {A} (f : BlockStorage.t D → outcome (result A TransactionError.t * BlockStorage.t D))
    (fs : t) : outcome (result A TransactionError.t * t) :=
  '(r, s) ← f (storage fs); Return (r, fs <| storage := s |>).

(* services_storage/src/persistent_fs.rs:110-130 PersistentFilesystem::format *)
Definition format (drawn : draw) (root_dir_id : ObjectId.t) (d : D) (owner : string)
    : outcome (result t TransactionError.t) :=
  r ← BlockStorage.format d;
  match r with
  | Err e => Return (Err (TransactionError.StorageError
                            ("format failed: " +:+ BlockStorageError.debug e)))
  | Ok s =>
      match serialize (PersistentDirectory.new owner 0) with
      | Err e => Return (Err e)
      | Ok root_json =>
          '(r, s) ← put drawn root_dir_id root_json s;
          Return (map_ok (λ _, mk s root_dir_id) r)
      end
  end.
(* services_storage/src/persistent_fs.rs:132-141 PersistentFilesystem::open *)
Definition open (d : D) (root_dir_id : ObjectId.t) : outcome (result t TransactionError.t) :=
  r ← BlockStorage.open d;
  match r with
  | Err e => Return (Err (TransactionError.StorageError
                            ("open failed: " +:+ BlockStorageError.debug e)))
  | Ok s => Return (Ok (mk s root_dir_id))
  end.
(* services_storage/src/persistent_fs.rs:148-165 PersistentFilesystem::read_directory *)
Definition read_directory (drawn : TransactionId.t) (dir_id : ObjectId.t) (fs : t)
    : outcome (result PersistentDirectory.t TransactionError.t * t) :=
  try! data, fs := on_storage (get drawn dir_id) fs in
  Return (ok_or (directory_from_slice data)
            (TransactionError.StorageError ("deserialize failed: " +:+ from_slice_error data)), fs).
(* services_storage/src/persistent_fs.rs:167-181 PersistentFilesystem::write_directory *)
Definition write_directory (drawn : draw) (dir_id : ObjectId.t) (dir : PersistentDirectory.t)
    (fs : t) : outcome (result VersionId.t TransactionError.t * t) :=
  match serialize dir with
  | Err e => Return (Err e, fs)
  | Ok dir_json => on_storage (put drawn dir_id dir_json) fs
  end.
(* services_storage/src/persistent_fs.rs:183-206 PersistentFilesystem::mkdir *)
Definition mkdir (new_dir_id : ObjectId.t) (d1 : draw) (d2 : TransactionId.t) (d3 : draw)
    (name : string) (parent_dir_id : ObjectId.t) (owner : string) (timestamp : N) (fs : t)
    : outcome (result ObjectId.t TransactionError.t * t) :=
  let new_dir := (PersistentDirectory.new owner timestamp)
                   <| PersistentDirectory.parent := Some parent_dir_id |> in
  try! _, fs := write_directory d1 new_dir_id new_dir fs in
  try! parent, fs := read_directory d2 parent_dir_id fs in
  let entry := DirectoryEntry.new name new_dir_id ObjectKind.Map in
  let parent := PersistentDirectory.add_entry (DirectoryEntry.name entry) entry timestamp parent in
  try! _, fs := write_directory d3 parent_dir_id parent fs in
  Return (Ok new_dir_id, fs).
(* services_storage/src/persistent_fs.rs:208-222 PersistentFilesystem::link *)
Definition link (d1 : TransactionId.t) (d2 : draw) (name : string) (dir_id object_id : ObjectId.t)
    (kind : ObjectKind.t) (timestamp : N) (fs : t)
    : outcome (result unit TransactionError.t * t) :=
  try! dir, fs := read_directory d1 dir_id fs in
  let entry := DirectoryEntry.new name object_id kind in
  let dir := PersistentDirectory.add_entry (DirectoryEntry.name entry) entry timestamp dir in
  try! _, fs := write_directory d2 dir_id dir fs in
  Return (Ok tt, fs).
(* services_storage/src/persistent_fs.rs:224-235 PersistentFilesystem::unlink *)
Definition unlink (d1 : TransactionId.t) (d2 : draw) (name : string) (dir_id : ObjectId.t)
    (timestamp : N) (fs : t)
    : outcome (result (option DirectoryEntry.t) TransactionError.t * t) :=
  try! dir, fs := read_directory d1 dir_id fs in
  let '(entry, dir) := PersistentDirectory.remove_entry name timestamp dir in
  try! _, fs := write_directory d2 dir_id dir fs in
  Return (Ok entry, fs).
(* services_storage/src/persistent_fs.rs:237-244 PersistentFilesystem::list *)
Definition list_dir (d : TransactionId.t) (dir_id : ObjectId.t) (fs : t)
    : outcome (result (list (string * DirectoryEntry.t)) TransactionError.t * t) :=
  try! dir, fs := read_directory d dir_id fs in
  Return (Ok (PersistentDirectory.list_entries dir), fs).
(* services_storage/src/persistent_fs.rs:246-253 PersistentFilesystem::write_file *)
Definition write_file (file_id : ObjectId.t) (drawn : draw) (content : list N) (fs : t)
    : outcome (result ObjectId.t TransactionError.t * t) :=
  try! _, fs := on_storage (put drawn file_id content) fs in
  Return (Ok file_id, fs).
(* services_storage/src/persistent_fs.rs:255-264 PersistentFilesystem::read_file *)
Definition read_file (drawn : TransactionId.t) (file_id : ObjectId.t) (fs : t)
    : outcome (result (list N) TransactionError.t * t) :=
  on_storage (get drawn file_id) fs.
End with_device.
Arguments t D : clear implicits.
End PersistentFilesystem.
