(* ===== verification/BlockProps.v ===== *)
(** * Crash safety of the block store

    What a block device and a JSON codec promise (classes [DeviceSpec] and
    [StorageJsonSpec]), and what the block store makes of it: a commit is on the disk as
    a whole or not at all, whichever write of the device fails. *)

From S2P Require Import Prelude CoreTypes Debug Storage BlockStore.
Open Scope string_scope.
Open Scope list_scope.
Open Scope N_scope.

(** ** Interfaces *)

Definition block_nat : nat := N.to_nat BLOCK_SIZE.

(** A device is an array of blocks.  A read returns the block; a write either stores the
    block or fails and changes nothing; flushing changes nothing. *)
Class DeviceSpec (D : Type) `{BlockDevice D} := {
  contents : D → list (list N);
  device_wf : D → Prop;
  count_contents d : block_count d = len (contents d);
  contents_sized d : device_wf d → Forall (λ b, length b = block_nat) (contents d);
  read_spec d i b : device_wf d → contents d !! N.to_nat i = Some b →
    ∃ d', read_block i zero_block d = (Ok b, d') ∧ contents d' = contents d ∧ device_wf d';
  read_frame d i buf r d' : device_wf d → read_block i buf d = (r, d') →
    device_wf d' ∧ contents d' = contents d;
  write_spec d i b r d' : device_wf d → length b = block_nat →
    write_block i b d = (r, d') →
    device_wf d' ∧
    contents d' = (if is_ok r then <[N.to_nat i := b]> (contents d) else contents d) ∧
    (is_ok r = true → i < len (contents d));
  flush_spec d r d' : device_wf d → flush d = (r, d') → device_wf d' ∧ contents d' = contents d
}.

(** What the store relies on of [serde_json]: reading back what was written, in texts
    without zero bytes. *)
Class StorageJsonSpec `{StorageJson} := {
  superblock_roundtrip sb b : superblock_to_vec sb = Some b →
    superblock_from_slice b = Some sb ∧ Forall (λ x, x ≠ 0) b ∧ b ≠ [];
  record_roundtrip r b : record_to_vec r = Some b →
    record_from_slice b = Some r ∧ Forall (λ x, x ≠ 0) b ∧ b ≠ []
}.

Lemma zero_block_length : length zero_block = block_nat.
Proof. apply length_replicate. Qed.

Lemma ram_disk_read d i b : Forall (λ b, length b = block_nat) (RamDisk.blocks d) →
  RamDisk.blocks d !! N.to_nat i = Some b → RamDisk.read_block i zero_block d = (Ok b, d).
Proof.
  intros Hwf Hb. unfold RamDisk.read_block, RamDisk.block_count, len.
  pose proof (lookup_lt_Some _ _ _ Hb). pose proof (Forall_lookup_1 _ _ _ _ Hwf Hb) as Hlen.
  destruct (N.leb_spec (N.of_nat (length (RamDisk.blocks d))) i); [lia|].
  rewrite zero_block_length. destruct (N.ltb_spec (N.of_nat block_nat) BLOCK_SIZE);
    [unfold block_nat in *; lia|].
  do 2 f_equal. unfold copy_from_slice. rewrite (list_lookup_total_correct _ _ _ Hb), drop_ge,
    app_nil_r; [done|]. by rewrite zero_block_length, Hlen.
Qed.

#[export] Program Instance ram_disk_spec : DeviceSpec RamDisk.t := {|
  contents := RamDisk.blocks;
  device_wf d := Forall (λ b, length b = block_nat) (RamDisk.blocks d)
|}.
Next Obligation. done. Qed.
Next Obligation. done. Qed.
Next Obligation. intros d i b Hwf Hb. exists d. split; [by apply ram_disk_read|done]. Qed.
Next Obligation.
  intros d i buf r d' Hwf. simpl. unfold RamDisk.read_block.
  destruct (_ <=? _); [|destruct (_ <? _)]; by intros [= <- <-].
Qed.
Next Obligation.
  intros d i b r d' Hwf Hlen. simpl. unfold RamDisk.write_block, RamDisk.block_count.
  destruct (N.leb_spec (len (RamDisk.blocks d)) i); [by intros [= <- <-]|].
  destruct (_ <? _); intros [= <- <-]; [done|]. simpl.
  change (N.to_nat BLOCK_SIZE) with block_nat.
  rewrite take_ge by lia. split_and!; [by apply Forall_insert|done|done].
Qed.
Next Obligation. intros d r d' Hwf [= <- <-]. done. Qed.

Lemma ram_disk_new_wf n : device_wf (RamDisk.new n).
Proof. apply Forall_replicate. apply zero_block_length. Qed.

(** Injected failures keep the promise: a failing write changes nothing. *)
Lemma should_fail_inner `{BlockDevice D} i (d : FailingBlockDevice.t D) :
  FailingBlockDevice.inner (FailingBlockDevice.should_fail i d).2 = FailingBlockDevice.inner d.
Proof.
  unfold FailingBlockDevice.should_fail.
  destruct (FailingBlockDevice.policy d); try done. by case_bool_decide.
Qed.

Lemma count_write_inner {D} i (d : FailingBlockDevice.t D) :
  FailingBlockDevice.inner (FailingBlockDevice.count_write i d) = FailingBlockDevice.inner d.
Proof.
  unfold FailingBlockDevice.count_write.
  destruct (FailingBlockDevice.policy _); try done. by case_bool_decide.
Qed.

#[export] Program Instance failing_device_spec `{DeviceSpec D}
    : DeviceSpec (FailingBlockDevice.t D) := {|
  contents d := contents (FailingBlockDevice.inner d);
  device_wf d := device_wf (FailingBlockDevice.inner d)
|}.
Next Obligation. intros D ? ? d. exact (count_contents (FailingBlockDevice.inner d)). Qed.
Next Obligation. intros D ? ? d. exact (contents_sized (FailingBlockDevice.inner d)). Qed.
Next Obligation.
  intros D ? ? d i b Hwf Hb. simpl. unfold FailingBlockDevice.read_block.
  destruct (read_spec _ _ _ Hwf Hb) as (d' & -> & ? & ?). by eexists.
Qed.
Next Obligation.
  intros D ? ? d i buf r d' Hwf. simpl. unfold FailingBlockDevice.read_block.
  destruct (read_block i buf _) as [r0 d2] eqn:Hr. intros [= <- <-]. simpl.
  by apply (read_frame _ i buf r0).
Qed.
Next Obligation.
  intros D ? ? d i b r d' Hwf Hlen. simpl. unfold FailingBlockDevice.write_block.
  pose proof (should_fail_inner i d) as Hi.
  destruct (FailingBlockDevice.should_fail i d) as [[] d1]; simpl in Hi.
  { intros [= <- <-]. by rewrite Hi. }
  destruct (write_block i b _) as [r0 d2] eqn:Hw. intros [= <- <-]. simpl.
  rewrite count_write_inner, Hi in Hw. by apply (write_spec _ i b).
Qed.
Next Obligation.
  intros D ? ? d r d' Hwf. simpl. unfold FailingBlockDevice.flush.
  destruct (match FailingBlockDevice.policy d with
            | FailurePolicy.AfterWrites _ => _ | _ => _ end); [by intros [= <- <-]|].
  destruct (flush _) as [r0 d2] eqn:Hf. intros [= <- <-]. simpl. by apply (flush_spec _ r0).
Qed.

(** ** Blocks, texts and ranges *)

#[local] Opaque BLOCK_SIZE.

Lemma drop_zero_block n : drop n zero_block = replicate (block_nat - n) 0.
Proof. apply drop_replicate. Qed.

Lemma padded_length b : len b ≤ BLOCK_SIZE → length (BlockStorage.padded b) = block_nat.
Proof.
  unfold BlockStorage.padded, copy_from_slice, len. intros Hb.
  rewrite length_app, drop_zero_block, length_replicate. unfold block_nat. lia.
Qed.

Lemma until_zero_zeros n : until_zero (replicate n 0) = [].
Proof. by destruct n. Qed.

Lemma until_zero_app b l : Forall (λ x, x ≠ 0) b → until_zero (b ++ l) = b ++ until_zero l.
Proof.
  induction 1 as [|x b Hx _ IH]; [done|]. simpl.
  destruct (N.eqb_spec x 0); [done|]. by rewrite IH.
Qed.

Lemma until_zero_padded b : Forall (λ x, x ≠ 0) b → until_zero (BlockStorage.padded b) = b.
Proof.
  intros Hb. unfold BlockStorage.padded, copy_from_slice.
  rewrite until_zero_app, drop_zero_block, until_zero_zeros by done. apply app_nil_r.
Qed.

Lemma range_cons a b : a < b → range a b = a :: range (a + 1) b.
Proof.
  intros Hab. unfold range. replace (N.to_nat (b - a)) with (S (N.to_nat (b - (a + 1)))) by lia.
  simpl. rewrite N.add_0_r, <- fmap_S_seq. f_equal. rewrite <- list_fmap_compose.
  apply list_fmap_ext. intros i x _. simpl. lia.
Qed.

Lemma range_nil a b : b ≤ a → range a b = [].
Proof. intros. unfold range. by replace (b - a) with 0 by lia. Qed.

Lemma range_length a b : length (range a b) = N.to_nat (b - a).
Proof. unfold range. by rewrite length_fmap, length_seq. Qed.

Lemma elem_of_range x a b : x ∈ range a b ↔ a ≤ x ∧ x < b.
Proof.
  unfold range. rewrite list_elem_of_fmap. split.
  - intros (i & -> & Hi%elem_of_seq). lia.
  - intros [??]. exists (N.to_nat (x - a)). split; [lia|]. apply elem_of_seq. lia.
Qed.

Lemma range_snoc a b : a ≤ b → range a (b + 1) = range a b ++ [b].
Proof.
  intros Hab. unfold range. replace (N.to_nat (b + 1 - a)) with (S (N.to_nat (b - a))) by lia.
  rewrite seq_S, fmap_app. simpl. do 2 f_equal. lia.
Qed.

Lemma filter_keeps_none {A} (P : A → Prop) `{∀ x, Decision (P x)} (l : list A) :
  (∀ x, x ∈ l → ¬ P x) → filter P l = [].
Proof.
  induction l as [|x l IH]; intros HP; [done|].
  rewrite filter_cons, decide_False by (apply HP; by left). apply IH.
  intros y Hy. apply HP. by right.
Qed.

Lemma filter_agree {A} (P Q : A → Prop) `{∀ x, Decision (P x)} `{∀ x, Decision (Q x)} (l : list A) :
  (∀ x, x ∈ l → P x ↔ Q x) → filter P l = filter Q l.
Proof.
  induction l as [|x l IH]; intros HP; [done|]. rewrite !filter_cons.
  assert (filter P l = filter Q l) as -> by (apply IH; intros y Hy; apply HP; by right).
  assert (P x ↔ Q x) by (apply HP; by left). repeat case_decide; naive_solver.
Qed.

Lemma set_remove_range f t : f < t → BlockStorage.set_remove f (range f t) = range (f + 1) t.
Proof.
  intros Hf. rewrite range_cons by done. unfold BlockStorage.set_remove.
  rewrite filter_cons, decide_False by naive_solver. apply filter_keeps_all.
  intros x Hx. apply elem_of_range in Hx. lia.
Qed.

Lemma take_free_range n f t : f + N.of_nat n ≤ t →
  BlockStorage.take_free n (range f t) = (range f (f + N.of_nat n), range (f + N.of_nat n) t).
Proof.
  revert f. induction n as [|n IH]; intros f Hn; cbn [BlockStorage.take_free].
  { change (N.of_nat 0) with 0. by rewrite N.add_0_r, (range_nil f f). }
  assert (f < t) by lia. pose proof (set_remove_range f t ltac:(done)) as Hr.
  rewrite (range_cons f t) in * by done. rewrite Hr, IH by lia.
  rewrite (range_cons f (f + N.of_nat (S n))) by lia.
  by replace (f + 1 + N.of_nat n) with (f + N.of_nat (S n)) by lia.
Qed.

Lemma blocks_for_spec n : n ≤ BlockStorage.blocks_for n * BLOCK_SIZE ∧
  (0 < n → 0 < BlockStorage.blocks_for n).
Proof.
  unfold BlockStorage.blocks_for, div_ceil. change BLOCK_SIZE with 4096.
  pose proof (N.div_mod n 4096 ltac:(lia)).
  destruct (N.eqb_spec (n mod 4096) 0); split; intros; try lia.
  all: pose proof (N.mod_lt n 4096 ltac:(lia)); lia.
Qed.

(** ** What each operation does to the device *)

Section store.
Context {D : Type} `{DeviceSpec D} `{StorageJsonSpec} `{UuidFormat}.
Implicit Types (s : BlockStorage.t D) (c : list (list N)).

(** [c'] differs from [c] at most in the blocks [lo .. hi). *)
Definition agree_outside (lo hi : N) c c' : Prop :=
  length c' = length c ∧ ∀ i, (N.of_nat i < lo ∨ hi ≤ N.of_nat i) → c' !! i = c !! i.

Lemma agree_refl lo hi c : agree_outside lo hi c c.
Proof. done. Qed.
Lemma agree_trans lo hi c1 c2 c3 :
  agree_outside lo hi c1 c2 → agree_outside lo hi c2 c3 → agree_outside lo hi c1 c3.
Proof.
  intros [L1 A1] [L2 A2]. split; [congruence|]. intros i Hi. by rewrite A2, A1.
Qed.
Lemma agree_weaken lo hi lo' hi' c c' :
  agree_outside lo hi c c' → lo' ≤ lo → hi ≤ hi' → agree_outside lo' hi' c c'.
Proof. intros [L A] ??. split; [done|]. intros i Hi. apply A. lia. Qed.
Lemma agree_insert i b c : agree_outside i (i + 1) c (<[N.to_nat i := b]> c).
Proof.
  split; [apply length_insert|]. intros j Hj. apply list_lookup_insert_ne. lia.
Qed.

(** A step that only touches the device, inside the blocks [lo .. hi). *)
Definition touches (lo hi : N) s s' : Prop :=
  s' = s <| BlockStorage.device := BlockStorage.device s' |> ∧
  device_wf (BlockStorage.device s') ∧
  agree_outside lo hi (contents (BlockStorage.device s)) (contents (BlockStorage.device s')).

Lemma touches_trans lo hi s1 s2 s3 :
  touches lo hi s1 s2 → touches lo hi s2 s3 → touches lo hi s1 s3.
Proof.
  intros (E1 & W1 & A1) (E2 & W2 & A2). split_and!; [|done|by eapply agree_trans].
  rewrite E2 at 1. rewrite E1. by destruct s1.
Qed.
Lemma touches_weaken lo hi lo' hi' s s' :
  touches lo hi s s' → lo' ≤ lo → hi ≤ hi' → touches lo' hi' s s'.
Proof. intros (E & W & A) ??. split_and!; [done..|by eapply agree_weaken]. Qed.

Lemma write_step s i b :
  device_wf (BlockStorage.device s) → length b = block_nat →
  ∃ r s', BlockStorage.on_device (write_block i b) s = Return (r, s') ∧ touches i (i + 1) s s' ∧
    (is_ok r = true → contents (BlockStorage.device s') !! N.to_nat i = Some b) ∧
    (is_ok r = false → contents (BlockStorage.device s') = contents (BlockStorage.device s)).
Proof.
  intros Hwf Hb. unfold BlockStorage.on_device.
  destruct (write_block i b (BlockStorage.device s)) as [r d] eqn:Hw.
  apply write_spec in Hw as (W & C & Hi); [|done..].
  eexists _, _. split; [done|]. destruct r as [u|e]; simpl in *.
  - split_and!; [split_and!; simpl| |done]; [done|done| |].
    + rewrite C. apply agree_insert.
    + intros _. rewrite C. apply list_lookup_insert_eq.
      specialize (Hi eq_refl). unfold len in Hi. lia.
  - split; [|done]. split_and!; simpl; [done..|]. rewrite C. apply agree_refl.
Qed.

Lemma flush_step s lo hi : device_wf (BlockStorage.device s) →
  ∃ r s', BlockStorage.on_device flush s = Return (r, s') ∧ touches lo hi s s' ∧
    contents (BlockStorage.device s') = contents (BlockStorage.device s).
Proof.
  intros Hwf. unfold BlockStorage.on_device.
  destruct (flush (BlockStorage.device s)) as [r d] eqn:Hf.
  apply flush_spec in Hf as (W & C); [|done].
  eexists _, _. split; [done|]. split; [|done]. split_and!; simpl; [done..|].
  rewrite C. apply agree_refl.
Qed.

(** The chunk of [data] in its [j]-th block. *)
Definition chunk (data : list N) (j : nat) : list N := take block_nat (drop (j * block_nat) data).

Lemma chunk_length data j : len (chunk data j) ≤ BLOCK_SIZE.
Proof. unfold chunk, len, block_nat. rewrite length_take. lia. Qed.

Lemma write_chunks_spec m a data s :
  device_wf (BlockStorage.device s) →
  ∃ r s', BlockStorage.write_chunks (range a (a + N.of_nat m)) data s = Return (r, s') ∧
    touches a (a + N.of_nat m) s s' ∧
    (is_ok r = true → ∀ j, (j < m)%nat →
       contents (BlockStorage.device s') !! (N.to_nat a + j)%nat
       = Some (BlockStorage.padded (chunk data j))).
Proof.
  revert a data s. induction m as [|m IH]; intros a data s Hwf.
  { rewrite range_nil by lia. exists (Ok tt), s. split; [done|]. split; [|lia].
    split_and!; [by destruct s|done|apply agree_refl]. }
  rewrite range_cons by lia. cbn [BlockStorage.write_chunks].
  destruct (write_step s a (BlockStorage.padded (chunk data 0))) as (r1 & s1 & E1 & T1 & C1 & _);
    [done|apply padded_length, chunk_length|].
  unfold chunk in E1. rewrite drop_0 in E1. change (N.to_nat BLOCK_SIZE) with block_nat.
  rewrite E1. clear E1. destruct r1 as [u|e]; cbn [try_bind].
  2:{ exists (Err e), s1. split; [done|]. split; [|done]. eapply touches_weaken; [done|lia..]. }
  replace (a + N.of_nat (S m)) with (a + 1 + N.of_nat m) by lia.
  destruct (IH (a + 1) (drop block_nat data) s1) as (r2 & s2 & -> & T2 & C2); [apply T1|].
  exists r2, s2. split; [done|]. split.
  { eapply touches_trans; eapply touches_weaken; try done; lia. }
  intros Hr j Hj. destruct j as [|j].
  - rewrite Nat.add_0_r. destruct T2 as (_ & _ & _ & A). rewrite A by lia. by apply C1.
  - replace (N.to_nat a + S j)%nat with (N.to_nat (a + 1) + j)%nat by lia.
    rewrite C2 by (done || lia). unfold chunk. rewrite drop_drop.
    done.
Qed.

Lemma write_data_spec m a data s :
  device_wf (BlockStorage.device s) →
  ∃ r s', BlockStorage.write_data (range a (a + N.of_nat m)) data s = Return (r, s') ∧
    touches a (a + N.of_nat m) s s' ∧
    (is_ok r = true → ∀ j, (j < m)%nat →
       contents (BlockStorage.device s') !! (N.to_nat a + j)%nat
       = Some (BlockStorage.padded (chunk data j))).
Proof.
  intros Hwf. unfold BlockStorage.write_data.
  destruct (write_chunks_spec m a data s Hwf) as (r1 & s1 & -> & T1 & C1).
  destruct r1 as [u|e]; cbn [try_bind]; [|by exists (Err e), s1].
  destruct (flush_step s1 a (a + N.of_nat m)) as (r2 & s2 & -> & T2 & C2); [apply T1|].
  destruct r2 as [u2|e]; cbn [try_bind]; eexists _, s2; (split; [done|]);
    (split; [by eapply touches_trans|]); [|done].
  intros _ j Hj. rewrite C2. by apply C1.
Qed.

(** *** Storing a write *)

(** The data of [w] lies in the blocks of [a], inside [lo .. hi). *)
Record stored (c : list (list N)) (lo hi : N) (w : PendingWrite.t) (a : AllocationEntry.t) : Prop := {
  stored_object : AllocationEntry.object_id a = PendingWrite.object_id w;
  stored_version : AllocationEntry.version_id a = PendingWrite.version_id w;
  stored_size : AllocationEntry.size_bytes a = len (PendingWrite.data w);
  stored_lo : lo ≤ AllocationEntry.block_idx a;
  stored_hi : AllocationEntry.block_idx a + BlockStorage.blocks_for (len (PendingWrite.data w)) ≤ hi;
  stored_chunks j : (j < N.to_nat (BlockStorage.blocks_for (len (PendingWrite.data w))))%nat →
    c !! (N.to_nat (AllocationEntry.block_idx a) + j)%nat
    = Some (BlockStorage.padded (chunk (PendingWrite.data w) j))
}.

Lemma stored_frame c c' lo hi lo' hi' w a :
  stored c lo hi w a → agree_outside lo' hi' c c' → hi ≤ lo' ∨ hi' ≤ lo →
  stored c' lo hi w a.
Proof.
  intros [S1 S2 S3 S4 S5 S6] [_ A] Hd. constructor; try done.
  intros j Hj. rewrite A by lia. by apply S6.
Qed.
Lemma stored_weaken c lo hi lo' hi' w a :
  stored c lo hi w a → lo' ≤ lo → hi ≤ hi' → stored c lo' hi' w a.
Proof. intros [S1 S2 S3 S4 S5 S6] ??. constructor; try done; lia. Qed.

(** Only the device and the free list change, and the free list shrinks from the left. *)
Record extends (total f f' : N) s s' : Prop := {
  ext_same : s' = s <| BlockStorage.device := BlockStorage.device s' |>
                    <| BlockStorage.free_blocks := range f' total |>;
  ext_wf : device_wf (BlockStorage.device s');
  ext_agree : agree_outside f f' (contents (BlockStorage.device s))
                (contents (BlockStorage.device s'));
  ext_le : f ≤ f' ∧ f' ≤ total
}.

Lemma store_write_spec w total f s r s' :
  device_wf (BlockStorage.device s) → BlockStorage.free_blocks s = range f total → f ≤ total →
  BlockStorage.store_write w s = Return (r, s') →
  ∃ f', extends total f f' s s' ∧
    ∀ a, r = Ok a → stored (contents (BlockStorage.device s')) f f' w a.
Proof.
  intros Hwf Hfree Hft. unfold BlockStorage.store_write, BlockStorage.allocate_blocks.
  set (n := BlockStorage.blocks_for (len (PendingWrite.data w))).
  rewrite Hfree. unfold len at 1. rewrite range_length.
  destruct (N.ltb_spec (N.of_nat (N.to_nat (total - f))) n) as [Hlt|Hge]; cbn [try_bind].
  { intros [= <- <-]. exists f. split; [|done]. split; [|done|apply agree_refl|lia].
    destruct s. simpl in *. by rewrite Hfree. }
  rewrite take_free_range by lia. rewrite N2Nat.id. cbn [try_bind].
  destruct (N.eq_dec n 0) as [Hn|Hn]; [by rewrite range_nil by lia|].
  rewrite (range_cons f (f + n)) by lia. rewrite <- (range_cons f (f + n)) by lia.
  set (s0 := s <| BlockStorage.free_blocks := range (f + n) total |>).
  destruct (write_data_spec (N.to_nat n) f (PendingWrite.data w) s0 Hwf) as (r1 & s1 & E & T & C).
  rewrite N2Nat.id in *. rewrite E. clear E. destruct T as (T1 & T2 & T3).
  assert (extends total f (f + n) s s1) as X.
  { split; [|done|done|lia]. rewrite T1. by destruct s. }
  destruct r1 as [u|e]; cbn [try_bind]; intros [= <- <-]; exists (f + n); (split; [done|]); [|done].
  intros a [= <-]. constructor; simpl; try done; try lia. intros j Hj. by apply C.
Qed.

Lemma extends_trans total f1 f2 f3 s1 s2 s3 :
  extends total f1 f2 s1 s2 → extends total f2 f3 s2 s3 → extends total f1 f3 s1 s3.
Proof.
  intros [E1 W1 A1 L1] [E2 W2 A2 L2]. split; [|done| |lia].
  - rewrite E2, E1. by destruct s1.
  - eapply agree_trans; eapply agree_weaken; try done; lia.
Qed.

Lemma store_writes_spec ws total f s r s' :
  device_wf (BlockStorage.device s) → BlockStorage.free_blocks s = range f total → f ≤ total →
  BlockStorage.store_writes ws s = Return (r, s') →
  ∃ f', extends total f f' s s' ∧
    ∀ l, r = Ok l → Forall2 (stored (contents (BlockStorage.device s')) f f') ws l.
Proof.
  revert f s r. induction ws as [|w ws IH]; intros f s r Hwf Hfree Hft; cbn [BlockStorage.store_writes].
  { intros [= <- <-]. exists f. split; [|by intros l [= <-]].
    split; [|done|apply agree_refl|lia]. destruct s; simpl in *; by rewrite Hfree. }
  intros [(a & s1 & E1 & E2)|(e & E1 & ->)]%try_bind_Return;
    apply (store_write_spec w total f) in E1 as (f1 & X1 & S1); try done; [|by exists f1].
  assert (BlockStorage.free_blocks s1 = range f1 total) as Hfree1 by (rewrite (ext_same _ _ _ _ _ X1); done).
  apply try_bind_Return in E2 as [(l & s2 & E2 & [= <- <-])|(e & E2 & ->)];
    (apply (IH f1) in E2 as (f2 & X2 & S2); [|apply X1|done|apply X1]);
    exists f2; (split; [by eapply extends_trans|]); [|done].
  pose proof (ext_le _ _ _ _ _ X1). pose proof (ext_le _ _ _ _ _ X2).
  intros l' [= <-]. constructor.
  - eapply stored_weaken; [eapply stored_frame; [by apply S1|apply X2|lia]|lia..].
  - eapply Forall2_impl; [by apply S2|]. intros w' a' Hs. eapply stored_weaken; [done|lia..].
Qed.

(** *** The superblock and the log *)

(** The geometry of a formatted device. *)
Record geometry (sb : Superblock.t) : Prop := {
  geo_magic : Superblock.magic sb = SUPERBLOCK_MAGIC;
  geo_start : Superblock.commit_log_start sb = 1;
  geo_log : 0 < Superblock.commit_log_blocks sb;
  geo_data : 1 + Superblock.commit_log_blocks sb ≤ Superblock.data_start sb;
  geo_total : Superblock.data_start sb ≤ Superblock.total_blocks sb;
  geo_max : Superblock.total_blocks sb ≤ u64_max
}.

Definition with_sequence (q : N) (sb : Superblock.t) : Superblock.t :=
  sb <| Superblock.commit_sequence := q |>.

(** Block 0 holds the superblock [sb]. *)
Definition superblock_on_disk c (sb : Superblock.t) : Prop :=
  ∃ b, superblock_to_vec sb = Some b ∧ c !! 0%nat = Some (BlockStorage.padded b).

Lemma write_superblock_spec s : device_wf (BlockStorage.device s) →
  ∃ r s', BlockStorage.write_superblock s = Return (r, s') ∧ touches 0 1 s s' ∧
    (superblock_on_disk (contents (BlockStorage.device s')) (BlockStorage.superblock s) ∨
     contents (BlockStorage.device s') = contents (BlockStorage.device s)).
Proof.
  intros Hwf. unfold BlockStorage.write_superblock.
  assert (touches 0 1 s s) as T0 by (split_and!; [by destruct s|done|apply agree_refl]).
  destruct (superblock_to_vec _) as [b|] eqn:Hb; [|eexists _, s; by auto].
  destruct (N.ltb_spec BLOCK_SIZE (len b)); [eexists _, s; by auto|].
  unfold BlockStorage.on_device at 1.
  destruct (write_block 0 _ (BlockStorage.device s)) as [r d] eqn:Hw.
  pose proof (write_spec _ _ _ _ _ Hwf (padded_length b ltac:(done)) Hw) as (W & C & Hi).
  destruct r as [u|e]; cbn [try_bind map_err] in *; simpl is_ok in *; cbn match in C.
  2:{ eexists _, _. split; [done|]. split; [|by right]. split_and!; [done..|].
      simpl. rewrite C. apply agree_refl. }
  set (s1 := s <| BlockStorage.device := d |>).
  destruct (flush_step s1 0 1 W) as (r2 & s2 & -> & T2 & C2).
  assert (touches 0 1 s s2) as T.
  { eapply touches_trans; [|done]. split_and!; [done..|]. simpl. rewrite C. apply (agree_insert 0). }
  assert (superblock_on_disk (contents (BlockStorage.device s2)) (BlockStorage.superblock s)) as S.
  { exists b. split; [done|]. rewrite C2. simpl. rewrite C. apply list_lookup_insert_eq.
    specialize (Hi eq_refl). unfold len in Hi. lia. }
  destruct r2; cbn [try_bind]; eexists _, s2; by auto.
Qed.

(** The commit log: [recs] are the valid records, each in the slot of its sequence
    number, and every other slot is empty. *)
Record log_holds c (n k : N) (recs : list CommitRecord.t) : Prop := {
  log_sorted : StronglySorted (λ r r', CommitRecord.sequence r < CommitRecord.sequence r') recs;
  log_record r : r ∈ recs →
    1 ≤ CommitRecord.sequence r ∧ CommitRecord.sequence r ≤ k ∧ Records.is_valid r = true ∧
    ∃ b, record_to_vec r = Some b ∧
      c !! N.to_nat (1 + CommitRecord.sequence r) = Some (BlockStorage.padded b);
  log_empty i : i < n → (∀ r, r ∈ recs → CommitRecord.sequence r ≠ i) →
    c !! N.to_nat (1 + i) = Some zero_block
}.

Lemma log_frame c c' n k recs lo hi :
  log_holds c n k recs → agree_outside lo hi c c' → k < n → hi ≤ 1 ∨ 1 + n ≤ lo →
  log_holds c' n k recs.
Proof.
  intros [L1 L2 L3] [_ A] Hk Hd. constructor; [done| |].
  - intros r Hr. destruct (L2 r Hr) as (? & ? & ? & b & ? & Hb). split_and!; [done..|].
    exists b. split; [done|]. rewrite A by lia. done.
  - intros i Hi Hn. rewrite A by lia. by apply L3.
Qed.

Lemma log_bump c n k k' recs : log_holds c n k recs → k ≤ k' → log_holds c n k' recs.
Proof.
  intros [L1 L2 L3] Hk. constructor; [done| |done].
  intros r Hr. destruct (L2 r Hr) as (? & ? & ? & ?). split_and!; [done|lia|done..].
Qed.

(** A block of the log is overwritten by the record of the next sequence number. *)
Lemma log_append c c' n k recs r b :
  log_holds c n k recs → CommitRecord.sequence r = k + 1 → k + 1 < n →
  Records.is_valid r = true → record_to_vec r = Some b →
  agree_outside (2 + k) (3 + k) c c' → c' !! N.to_nat (2 + k) = Some (BlockStorage.padded b) →
  log_holds c' n (k + 1) (recs ++ [r]).
Proof.
  intros [L1 L2 L3] Hs Hn Hv Hb [_ A] Hc. constructor.
  - apply StronglySorted_app. split_and!; [|done|by repeat constructor].
    intros r1 r2 Hr1 ->%list_elem_of_singleton. destruct (L2 r1 Hr1) as (? & ? & _). lia.
  - intros r' [Hr'| ->%list_elem_of_singleton]%elem_of_app.
    + destruct (L2 r' Hr') as (? & ? & ? & b' & ? & Hb'). split_and!; [done|lia|done|].
      exists b'. split; [done|]. rewrite A by lia. done.
    + rewrite Hs. split_and!; [lia..|done|]. exists b. split; [done|].
      by replace (1 + (k + 1)) with (2 + k) by lia.
  - intros i Hi Hne. rewrite A.
    + apply L3; [done|]. intros r' Hr'. apply Hne. set_solver.
    + assert (i ≠ k + 1); [|lia]. intros ->. apply (Hne r); set_solver.
Qed.

Lemma new_record_valid id q l : Records.is_valid (Records.new id q l) = true.
Proof. unfold Records.is_valid, Records.new, Records.compute_checksum. simpl. apply N.eqb_refl. Qed.

(** After the record: flushing and writing the superblock touch block 0 only. *)
Definition seal (s : BlockStorage.t D) : outcome (result unit BlockStorageError.t * BlockStorage.t D) :=
  try! _, s := BlockStorage.on_device flush s in
  try! _, s := BlockStorage.write_superblock s in
  Return (Ok tt, s).

Lemma seal_spec s : device_wf (BlockStorage.device s) →
  ∃ r s', seal s = Return (r, s') ∧ touches 0 1 s s' ∧
    (superblock_on_disk (contents (BlockStorage.device s')) (BlockStorage.superblock s) ∨
     contents (BlockStorage.device s') = contents (BlockStorage.device s)).
Proof.
  intros Hwf. unfold seal.
  destruct (flush_step s 0 1 Hwf) as (r1 & s1 & -> & T1 & C1).
  destruct r1 as [u|e]; cbn [try_bind]; [|eexists _, s1; by auto].
  destruct (write_superblock_spec s1) as (r2 & s2 & -> & T2 & C2); [apply T1|].
  assert (BlockStorage.superblock s1 = BlockStorage.superblock s) as Hsb
    by (destruct T1 as (-> & _); done).
  rewrite Hsb, C1 in C2. assert (touches 0 1 s s2) by (by eapply touches_trans).
  destruct r2; cbn [try_bind]; eexists _, s2; by auto.
Qed.

Lemma superblock_frame c c' sb lo hi :
  superblock_on_disk c sb → agree_outside lo hi c c' → 0 < lo → superblock_on_disk c' sb.
Proof.
  intros (b & ? & Hb) [_ A] Hlo. exists b. split; [done|]. rewrite A by lia. done.
Qed.

Lemma write_commit_record_spec id allocs s recs :
  let sb := BlockStorage.superblock s in
  let n := Superblock.commit_log_blocks sb in
  let k := Superblock.commit_sequence sb in
  let c := contents (BlockStorage.device s) in
  device_wf (BlockStorage.device s) → geometry sb → k + 1 < n → log_holds c n k recs →
  (∃ q, superblock_on_disk c (with_sequence q sb)) →
  ∃ r s', BlockStorage.write_commit_record id allocs s = Return (r, s') ∧
    let c' := contents (BlockStorage.device s') in
    s' = s <| BlockStorage.device := BlockStorage.device s' |>
           <| BlockStorage.superblock := with_sequence (k + 1) sb |> ∧
    device_wf (BlockStorage.device s') ∧ agree_outside 0 (1 + n) c c' ∧
    (∃ q, superblock_on_disk c' (with_sequence q sb)) ∧
    (log_holds c' n (k + 1) (recs ++ [Records.new id (k + 1) allocs]) ∨
     is_ok r = false ∧ log_holds c' n (k + 1) recs).
Proof.
  intros sb n k c Hwf Hgeo Hk Hlog (q & Hq).
  pose proof Hgeo as [G1 G2 G3 G4 G5 G6]. fold n in G3, G4.
  assert (add_u64 k 1 = Return (k + 1)) as Hadd by (apply add_u64_Return; lia).
  assert (add_u64 1 (k + 1) = Return (2 + k)) as Hadd2 by (apply add_u64_Return; lia).
  assert (log_holds c n (k + 1) recs) as Hbump by (eapply log_bump; [done|lia]).
  unfold BlockStorage.write_commit_record. fold sb k. rewrite Hadd. cbn [mbind outcome_bind].
  set (s0 := s <| BlockStorage.superblock ::= _ |>).
  destruct (record_to_vec _) as [b|] eqn:Hb.
  2:{ exists (Err BlockStorageError.SerializationError), s0. split_and!; try done; eauto. }
  destruct (N.ltb_spec BLOCK_SIZE (len b)).
  { exists (Err BlockStorageError.SerializationError), s0. split_and!; try done; eauto. }
  change (Superblock.commit_log_blocks (BlockStorage.superblock s0)) with n.
  change (Superblock.commit_log_start (BlockStorage.superblock s0))
    with (Superblock.commit_log_start sb).
  destruct (N.eqb_spec n 0); [lia|]. rewrite N.mod_small, G2, Hadd2 by done.
  cbn [mbind outcome_bind].
  destruct (write_step s0 (2 + k) (BlockStorage.padded b)) as (r1 & s1 & -> & T1 & C1 & F1);
    [done|by apply padded_length|]. destruct T1 as (E1 & W1 & A1).
  change (contents (BlockStorage.device s0)) with c in A1, F1.
  assert (superblock_on_disk (contents (BlockStorage.device s1)) (with_sequence q sb)) as Q1
    by (eapply superblock_frame; [done..|lia]).
  destruct r1 as [u|e]; cbn [try_bind].
  2:{ exists (Err e), s1. rewrite F1 by done.
      split_and!; try done; eauto. }
  assert (log_holds (contents (BlockStorage.device s1)) n (k + 1)
    (recs ++ [Records.new id (k + 1) allocs])) as L1.
  { eapply log_append; [done..|apply new_record_valid|done| |by apply C1].
    eapply agree_weaken; [done|lia..]. }
  fold (seal s1). destruct (seal_spec s1 W1) as (r2 & s2 & -> & T2 & C2).
  destruct T2 as (E2 & W2 & A2). exists r2, s2. split_and!; [done| |done| | |].
  - rewrite E2, E1. by destruct s.
  - eapply agree_trans; eapply agree_weaken; try done; lia.
  - destruct C2 as [C2|C2]; [|rewrite C2; by eauto].
    exists (k + 1). by rewrite E1 in C2.
  - left. eapply log_frame; [done..|lia].
Qed.

(** ** Durable states

    After [a] attempts to commit, the log holds the records [recs], which describe the
    groups of writes [log], and their data is on the disk below the first free block. *)
Record durable (a : N) s (recs : list CommitRecord.t) (log : list (list PendingWrite.t)) : Prop := {
  dur_wf : device_wf (BlockStorage.device s);
  dur_geo : geometry (BlockStorage.superblock s);
  dur_seq : Superblock.commit_sequence (BlockStorage.superblock s) ≤ a;
  dur_super : ∃ q, superblock_on_disk (contents (BlockStorage.device s))
                     (with_sequence q (BlockStorage.superblock s));
  dur_log : log_holds (contents (BlockStorage.device s))
              (Superblock.commit_log_blocks (BlockStorage.superblock s))
              (Superblock.commit_sequence (BlockStorage.superblock s)) recs;
  dur_data : ∃ f,
    BlockStorage.free_blocks s = range f (Superblock.total_blocks (BlockStorage.superblock s)) ∧
    Superblock.data_start (BlockStorage.superblock s) ≤ f ∧
    f ≤ Superblock.total_blocks (BlockStorage.superblock s) ∧
    Forall2 (λ ws r, Forall2 (stored (contents (BlockStorage.device s))
                                (Superblock.data_start (BlockStorage.superblock s)) f)
                       ws (CommitRecord.allocations r)) log recs
}.

(** The invariant is about the device, the superblock and the free list only. *)
Lemma durable_ext a a' s s' recs log :
  durable a s recs log → a ≤ a' → BlockStorage.device s' = BlockStorage.device s →
  BlockStorage.superblock s' = BlockStorage.superblock s →
  BlockStorage.free_blocks s' = BlockStorage.free_blocks s → durable a' s' recs log.
Proof.
  intros [D1 D2 D3 D4 D5 D6] Ha Ed Es Ef. constructor; rewrite ?Ed, ?Es, ?Ef; try done. lia.
Qed.

Lemma data_frame c c' lo f lo' hi' log recs :
  Forall2 (λ ws r, Forall2 (stored c lo f) ws (CommitRecord.allocations r)) log recs →
  agree_outside lo' hi' c c' → f ≤ lo' ∨ hi' ≤ lo →
  Forall2 (λ ws r, Forall2 (stored c' lo f) ws (CommitRecord.allocations r)) log recs.
Proof.
  intros HF A Hd. eapply Forall2_impl; [done|]. intros ws r HF'.
  eapply Forall2_impl; [exact HF'|]. intros w al Hs. by eapply stored_frame.
Qed.
Lemma data_weaken c lo f f' log recs :
  Forall2 (λ ws r, Forall2 (stored c lo f) ws (CommitRecord.allocations r)) log recs → f ≤ f' →
  Forall2 (λ ws r, Forall2 (stored c lo f') ws (CommitRecord.allocations r)) log recs.
Proof.
  intros HF Hd. eapply Forall2_impl; [done|]. intros ws r HF'.
  eapply Forall2_impl; [exact HF'|]. intros w al Hs. by eapply stored_weaken.
Qed.

(** Storing the writes of a transaction keeps the state durable. *)
Lemma durable_extends a s recs log f f' s' :
  let sb := BlockStorage.superblock s in
  durable a s recs log → a < Superblock.commit_log_blocks sb →
  BlockStorage.free_blocks s = range f (Superblock.total_blocks sb) →
  Superblock.data_start sb ≤ f →
  Forall2 (λ ws r, Forall2 (stored (contents (BlockStorage.device s)) (Superblock.data_start sb) f)
                     ws (CommitRecord.allocations r)) log recs →
  extends (Superblock.total_blocks sb) f f' s s' → durable a s' recs log.
Proof.
  intros sb [D1 D2 D3 D4 D5 _] Ha Hf Hlo Hdata [E W A L].
  assert (BlockStorage.superblock s' = sb) as Hsb by (rewrite E; done).
  pose proof D2 as [G1 G2 G3 G4 G5 G6]. fold sb in G3, G4, G5, D3.
  constructor; rewrite ?Hsb; try done.
  - destruct D4 as (q & Hq). exists q. eapply superblock_frame; [done..|lia].
  - eapply log_frame; [done..|fold sb; lia|fold sb; lia].
  - exists f'. split_and!; [rewrite E; done|lia|lia|].
    eapply data_weaken; [|apply L]. eapply data_frame; [done..|lia].
Qed.

Lemma foldl_index_same (l : list AllocationEntry.t) s :
  BlockStorage.device (foldl BlockStorage.index_allocation s l) = BlockStorage.device s ∧
  BlockStorage.superblock (foldl BlockStorage.index_allocation s l) = BlockStorage.superblock s ∧
  BlockStorage.free_blocks (foldl BlockStorage.index_allocation s l) = BlockStorage.free_blocks s.
Proof. revert s. induction l as [|x l IH]; intros s; [done|]. simpl.
  destruct (IH (BlockStorage.index_allocation s x)) as (-> & -> & ->). done.
Qed.

Lemma range_inj_r f f' t : f ≤ t → f' ≤ t → range f t = range f' t → f = f'.
Proof.
  intros Hf Hf' E. assert (length (range f t) = length (range f' t)) as El by by rewrite E.
  rewrite !range_length in El. lia.
Qed.

(** The first free block of a durable state, named by its free list. *)
Lemma durable_data a s recs log f :
  let sb := BlockStorage.superblock s in
  durable a s recs log → BlockStorage.free_blocks s = range f (Superblock.total_blocks sb) →
  f ≤ Superblock.total_blocks sb →
  Superblock.data_start sb ≤ f ∧
  Forall2 (λ ws r, Forall2 (stored (contents (BlockStorage.device s)) (Superblock.data_start sb) f)
                     ws (CommitRecord.allocations r)) log recs.
Proof.
  intros sb Hd Hf Hle. destruct (dur_data _ _ _ _ Hd) as (f' & Hf' & ? & ? & ?).
  fold sb in Hf'. rewrite Hf in Hf'. by apply range_inj_r in Hf' as ->.
Qed.

(** Writing the commit record makes stored writes part of the log, or leaves the log. *)
Lemma durable_record a s recs log f id ws allocs r s' :
  let sb := BlockStorage.superblock s in
  durable a s recs log → a + 1 < Superblock.commit_log_blocks sb →
  BlockStorage.free_blocks s = range f (Superblock.total_blocks sb) →
  f ≤ Superblock.total_blocks sb →
  Forall2 (stored (contents (BlockStorage.device s)) (Superblock.data_start sb) f) ws allocs →
  BlockStorage.write_commit_record id allocs s = Return (r, s') →
  ∃ recs' log', durable (a + 1) s' recs' log' ∧
    Superblock.commit_log_blocks (BlockStorage.superblock s')
    = Superblock.commit_log_blocks (BlockStorage.superblock s) ∧
    (log' = log ++ [ws] ∨ is_ok r = false ∧ log' = log).
Proof.
  intros sb Hd Ha Hf Hle Hws. pose proof (durable_data _ _ _ _ _ Hd Hf Hle) as [Hlo Hdata].
  pose proof (dur_seq _ _ _ _ Hd) as Hseq. pose proof (dur_geo _ _ _ _ Hd) as Hgeo.
  pose proof (geo_data _ Hgeo) as Hg. fold sb in Hseq, Hgeo, Hg.
  destruct (write_commit_record_spec id allocs s recs) as (r2 & s2 & -> & E & W & A & Q & L);
    [apply Hd|done|fold sb; lia|apply Hd|apply Hd|]. fold sb in A, Q, L, E. intros [= <- <-].
  assert (BlockStorage.superblock s2 = with_sequence (Superblock.commit_sequence sb + 1) sb) as Esb
    by (rewrite E; done).
  assert (BlockStorage.free_blocks s2 = BlockStorage.free_blocks s) as Ef by (rewrite E; done).
  assert (∀ recs' log', log_holds (contents (BlockStorage.device s2))
      (Superblock.commit_log_blocks sb) (Superblock.commit_sequence sb + 1) recs' →
    Forall2 (λ ws r, Forall2 (stored (contents (BlockStorage.device s2)) (Superblock.data_start sb)
       f) ws (CommitRecord.allocations r)) log' recs' → durable (a + 1) s2 recs' log') as Hmk.
  { intros recs' log' HL HD. constructor; rewrite ?Esb, ?Ef;
      [done|by destruct Hgeo|simpl; lia|done|done|]. exists f. done. }
  fold sb in Hdata. eapply data_frame in Hdata; [|exact A|lia].
  destruct L as [L|[Hr L]]; [|exists recs, log; rewrite Esb; split_and!; [by apply Hmk|done|by right]].
  eexists _, (log ++ [ws]). rewrite Esb. split_and!; [apply Hmk; [done|]|done|by left]. apply Forall2_app; [done|].
  repeat constructor. simpl. eapply Forall2_impl; [done|]. intros w al Hs.
  eapply stored_frame; [done..|lia].
Qed.

(** A commit is on the disk as a whole or not at all. *)
Lemma commit_pending_durable a s recs log id ws r s' :
  durable a s recs log → a + 1 < Superblock.commit_log_blocks (BlockStorage.superblock s) →
  BlockStorage.commit_pending id ws s = Return (r, s') →
  ∃ recs' log', durable (a + 1) s' recs' log' ∧
    Superblock.commit_log_blocks (BlockStorage.superblock s')
    = Superblock.commit_log_blocks (BlockStorage.superblock s) ∧
    (log' = log ++ [ws] ∨ is_ok r = false ∧ log' = log).
Proof.
  intros Hd Ha. pose proof (dur_data _ _ _ _ Hd) as (f & Hf & Hlo & Hhi & Hdata).
  unfold BlockStorage.commit_pending.
  intros [(allocs & s1 & E1 & E2)|(e & E1 & ->)]%try_bind_Return;
    (apply (store_writes_spec ws (Superblock.total_blocks (BlockStorage.superblock s)) f)
       in E1 as (f1 & X & S1); [|apply Hd|done|done]).
  2:{ exists recs, log. split_and!; [|by rewrite (ext_same _ _ _ _ _ X)|by right].
      eapply durable_ext; [eapply durable_extends; try done; lia|lia|done..]. }
  assert (durable a s1 recs log) as Hd1 by (eapply durable_extends; try done; lia).
  pose proof X as [EX _ _ LX].
  assert (BlockStorage.superblock s1 = BlockStorage.superblock s) as Hsb by (rewrite EX; done).
  apply try_bind_Return in E2 as [([] & s2 & E2 & [= <- <-])|(e & E2 & ->)];
    (eapply (durable_record _ _ _ _ f1 _ ws) in E2 as (recs' & log' & Hd2 & Hn2 & Hc);
       [|done|by rewrite Hsb|rewrite Hsb, EX; done|rewrite Hsb; lia|]).
  2,4: eapply Forall2_impl; [by apply S1|]; intros w al Hs; rewrite Hsb;
    eapply stored_weaken; [done|lia..].
  - destruct (foldl_index_same allocs s2) as (Q1 & Q2 & Q3).
    exists recs', log'. split_and!; [by eapply durable_ext|by rewrite Q2, Hn2, Hsb|done].
  - exists recs', log'. split_and!; [done|by rewrite Hn2, Hsb|done].
Qed.

(** ** Recovery *)

(** The storage [s], on a device with contents [c], has indexed the allocations [l]. *)
Record recovered c (sb : Superblock.t) (l : list AllocationEntry.t) s : Prop := {
  rec_wf : device_wf (BlockStorage.device s);
  rec_contents : contents (BlockStorage.device s) = c;
  rec_super : BlockStorage.superblock s = sb;
  rec_pending : BlockStorage.pending s = ∅;
  rec_allocations : BlockStorage.allocations s =
    foldl (λ m a, <[(AllocationEntry.object_id a, AllocationEntry.version_id a) := a]> m) ∅ l;
  rec_latest : BlockStorage.latest_versions s =
    foldl (λ m a, <[AllocationEntry.object_id a := AllocationEntry.version_id a]> m) ∅ l
}.

(** An allocation whose blocks have representable numbers. *)
Definition in_range (a : AllocationEntry.t) : Prop :=
  AllocationEntry.block_idx a + BlockStorage.blocks_for (AllocationEntry.size_bytes a) ≤ u64_max.

Lemma recover_allocation_spec c sb l a s : recovered c sb l s → in_range a →
  ∃ s', BlockStorage.recover_allocation s a = Return s' ∧ recovered c sb (l ++ [a]) s'.
Proof.
  intros [R1 R2 R3 R4 R5 R6] Ha. unfold BlockStorage.recover_allocation.
  apply (fold_outcome_returns (recovered c sb (l ++ [a]))).
  - constructor; try done; simpl; rewrite foldl_app; simpl; by rewrite ?R5, ?R6.
  - intros s1 j Hj [Q1 Q2 Q3 Q4 Q5 Q6]. apply elem_of_range in Hj.
    assert (add_u64 (AllocationEntry.block_idx a) j = Return (AllocationEntry.block_idx a + j)) as ->
      by (apply add_u64_Return; unfold in_range in Ha; lia).
    simpl. by eexists.
Qed.

Lemma recover_allocations_spec c sb l l' s : recovered c sb l s → Forall in_range l' →
  ∃ s', fold_outcome BlockStorage.recover_allocation l' s = Return s' ∧ recovered c sb (l ++ l') s'.
Proof.
  intros HR HF. revert l s HR. induction HF as [|a l' Ha _ IH]; intros l s HR; simpl.
  { exists s. by rewrite app_nil_r. }
  destruct (recover_allocation_spec c sb l a s HR Ha) as (s1 & -> & HR1). simpl.
  destruct (IH _ _ HR1) as (s2 & -> & HR2). exists s2. by rewrite <- app_assoc in HR2.
Qed.

(** The records of the slots before [i]. *)
Definition before (i : N) (recs : list CommitRecord.t) : list CommitRecord.t :=
  filter (λ r, CommitRecord.sequence r < i) recs.
Definition allocs_of (recs : list CommitRecord.t) : list AllocationEntry.t :=
  recs ≫= CommitRecord.allocations.

Lemma before_none i recs : (∀ r, r ∈ recs → CommitRecord.sequence r ≠ i) →
  before (i + 1) recs = before i recs.
Proof.
  intros Hn. unfold before. apply filter_agree. intros r Hr. specialize (Hn r Hr). lia.
Qed.

Lemma before_some i recs r :
  StronglySorted (λ r r', CommitRecord.sequence r < CommitRecord.sequence r') recs →
  r ∈ recs → CommitRecord.sequence r = i → before (i + 1) recs = before i recs ++ [r].
Proof.
  induction 1 as [|r0 recs HS IH HF]; intros Hr Hi; [set_solver|]. unfold before in *.
  rewrite Forall_forall in HF. rewrite !filter_cons. apply elem_of_cons in Hr as [->|Hr].
  - rewrite decide_True, decide_False by lia.
    rewrite !filter_keeps_none; [done|..];
      intros r' Hr'; specialize (HF r' Hr'); lia.
  - specialize (HF r Hr). rewrite !decide_True by lia. rewrite IH by done. done.
Qed.

(** The state of the recovery loop before slot [i]. *)
Definition recovering c (sb : Superblock.t) recs (i : N) (acc : BlockStorage.t D * BlockStorage.counters)
    : Prop :=
  recovered c sb (allocs_of (before i recs)) acc.1 ∧ (acc.2.2 = 0 ∨ acc.2.2 < i).

Lemma recover_slot_spec c (sb : Superblock.t) n k recs i acc :
  log_holds c n k recs → Superblock.commit_log_start sb = 1 → 1 + n ≤ u64_max → i < n →
  Forall in_range (allocs_of recs) → recovering c sb recs i acc →
  ∃ acc', BlockStorage.recover_slot acc i = Return acc' ∧ recovering c sb recs (i + 1) acc'.
Proof.
  intros [L1 L2 L3] Hstart Hmax Hi HF. destruct acc as [s [[m d] last]]. intros [HR Hlast].
  simpl in HR, Hlast. unfold BlockStorage.recover_slot.
  rewrite (rec_super _ _ _ _ HR), Hstart.
  assert (add_u64 1 i = Return (1 + i)) as -> by (apply add_u64_Return; lia). simpl.
  destruct (decide (i ∈ CommitRecord.sequence <$> recs)) as [Hin|Hno];
    rewrite list_elem_of_fmap in *.
  - destruct Hin as (r & Hri & Hr). symmetry in Hri.
    destruct (L2 r Hr) as (Hr1 & _ & Hv & b & Hb & Hcb). rewrite Hri in Hcb.
    rewrite <- (rec_contents _ _ _ _ HR) in Hcb.
    destruct (read_spec _ _ _ (rec_wf _ _ _ _ HR) Hcb) as (d' & -> & Cd & Wd).
    destruct (record_roundtrip r b Hb) as (Hrt & Hnz & Hne).
    rewrite until_zero_padded, Hrt, Hv by done. simpl.
    destruct (N.eqb_spec (len b) 0) as [E|_]; [by destruct b|].
    destruct (N.ltb_spec last (CommitRecord.sequence r)); [|lia]. simpl.
    destruct (recover_allocations_spec c sb (allocs_of (before i recs)) (CommitRecord.allocations r)
      (s <| BlockStorage.device := d' |>)) as (s' & -> & HR').
    { destruct HR. constructor; simpl; congruence. }
    { eapply Forall_forall. intros a Ha. eapply (Forall_forall in_range (allocs_of recs)); [done|].
      apply list_elem_of_bind. eauto. }
    simpl. eexists. split; [done|]. split; simpl; [|lia].
    rewrite (before_some i recs r) by done. unfold allocs_of in *. rewrite bind_app. simpl.
    by rewrite app_nil_r.
  - assert (c !! N.to_nat (1 + i) = Some zero_block) as Hz by (apply L3; [done|]; naive_solver).
    rewrite <- (rec_contents _ _ _ _ HR) in Hz.
    destruct (read_spec _ _ _ (rec_wf _ _ _ _ HR) Hz) as (d' & -> & Cd & Wd).
    unfold zero_block at 1. rewrite until_zero_zeros. simpl. eexists. split; [done|].
    split; simpl; [|lia]. rewrite before_none by naive_solver.
    destruct HR. constructor; simpl; congruence.
Qed.

Lemma recover_slots_spec c (sb : Superblock.t) n k recs s i :
  log_holds c n k recs → Superblock.commit_log_start sb = 1 → 1 + n ≤ u64_max → i ≤ n →
  Forall in_range (allocs_of recs) → recovered c sb [] s →
  ∃ acc, fold_outcome BlockStorage.recover_slot (range 0 i) (s, (0, 0, 0)) = Return acc ∧
    recovering c sb recs i acc.
Proof.
  intros HL Hstart Hmax Hi HF HR. induction i as [|i IH] using N.peano_ind.
  { rewrite range_nil by lia. eexists. split; [done|]. split; [|by left]. simpl.
    unfold before. by rewrite filter_keeps_none by lia. }
  destruct IH as (acc & E & HS); [lia|].
  rewrite <- N.add_1_r, range_snoc, fold_outcome_app, E by lia. simpl.
  destruct (recover_slot_spec c sb n k recs i acc) as (acc' & -> & HS'); try done; [lia|].
  by exists acc'.
Qed.

(** Opening the device of a durable state finds the whole log. *)
Lemma open_durable a s recs log :
  durable a s recs log → a < Superblock.commit_log_blocks (BlockStorage.superblock s) →
  ∃ q s', BlockStorage.open (BlockStorage.device s) = Return (Ok s') ∧
    recovered (contents (BlockStorage.device s)) (with_sequence q (BlockStorage.superblock s))
      (allocs_of recs) s'.
Proof.
  intros [D1 D2 D3 (q & b & Hb & Hc) D5 D6] Ha. pose proof D2 as [G1 G2 G3 G4 G5 G6].
  set (sb := BlockStorage.superblock s) in *. exists q. unfold BlockStorage.open.
  destruct (read_spec _ 0 _ D1 Hc) as (d & -> & Cd & Wd).
  destruct (superblock_roundtrip _ b Hb) as (Hrt & Hnz & _).
  rewrite until_zero_padded, Hrt by done. simpl. rewrite G1. simpl.
  unfold BlockStorage.perform_recovery. simpl.
  destruct (recover_slots_spec (contents (BlockStorage.device s)) (with_sequence q sb)
    (Superblock.commit_log_blocks sb) (Superblock.commit_sequence sb) recs
    (BlockStorage.mk d (with_sequence q sb) ∅ ∅
       (range (Superblock.data_start sb) (Superblock.total_blocks sb)) ∅ None)
    (Superblock.commit_log_blocks sb)) as ([s' [[m dd] last]] & E & HS & _); try done; try lia.
  { destruct D6 as (f & _ & _ & Hf & HF). clear -HF Hf G6.
    induction HF as [|ws r log recs Hwr _ IH]; [done|]. unfold allocs_of in *. simpl.
    apply Forall_app. split; [|done]. clear -Hwr Hf G6.
    induction Hwr as [|w al ws l Hs _ IH]; constructor; [|done].
    destruct Hs as [S1 S2 S3 S4 S5 S6]. unfold in_range. rewrite S3. lia. }
  simpl in E, HS. rewrite E. simpl. eexists. split; [done|].
  assert (before (Superblock.commit_log_blocks sb) recs = recs) as Hall.
  { apply filter_keeps_all. intros r Hr. destruct (log_record _ _ _ _ D5 r Hr) as (_ & ? & _). lia. }
  rewrite Hall in HS. destruct HS. constructor; simpl; done.
Qed.

(** *** Formatting *)

(** The number of blocks of the commit log: a twentieth of the device, from 1 to 256. *)
Definition log_blocks (total : N) : N := N.min (N.max (total * 5 / 100) 1) 256.

Lemma layout_geometry total sb : BlockStorage.layout total = Return (Ok sb) →
  geometry sb ∧ Superblock.total_blocks sb = total ∧ Superblock.commit_sequence sb = 0 ∧
  Superblock.commit_log_blocks sb = log_blocks total.
Proof.
  unfold BlockStorage.layout. intros (x & (-> & Hx)%mul_u64_Return & E)%bind_Return.
  revert E. set (n := N.min _ 256). cbv zeta.
  assert (0 < n) by (unfold n; lia).
  destruct (N.leb_spec total (1 + n)); [done|].
  destruct (N.leb_spec total (1 + n + N.max ((total - (1 + n)) / 10) 1)); [done|].
  intros [= <-]. split; [|by split_and!]. constructor; simpl; try done; lia.
Qed.

(** A blank device: every block is zero. *)
Definition blank (d : D) : Prop := ∀ i b, contents d !! i = Some b → b = zero_block.

Lemma format_durable d s : device_wf d → blank d →
  BlockStorage.format d = Return (Ok s) → durable 0 s [] [] ∧
  Superblock.commit_log_blocks (BlockStorage.superblock s) = log_blocks (block_count d).
Proof.
  intros Hwf Hblank. unfold BlockStorage.format. intros ([sb|e] & El & E)%bind_Return; [|done].
  apply layout_geometry in El as (G & Ht & Hs0 & Hl). revert E.
  destruct (superblock_to_vec sb) as [b|] eqn:Hb; [|done].
  destruct (N.ltb_spec BLOCK_SIZE (len b)); [done|].
  destruct (write_block 0 _ d) as [[u|e] d1] eqn:Hw; [|done].
  apply write_spec in Hw as (W1 & C1 & Hi); [|done|by apply padded_length].
  destruct (flush d1) as [[u'|e] d2] eqn:Hf; [|done].
  apply flush_spec in Hf as (W2 & C2); [|done]. intros [= <-].
  rewrite C1 in C2. simpl in C2. rewrite count_contents in Ht. specialize (Hi eq_refl).
  unfold len in *. pose proof G as [G1 G2 G3 G4 G5 G6]. split; [|done].
  constructor; simpl; [done|done|lia| | |].
  - exists 0, b. split; [by destruct sb; simpl in *; subst|]. rewrite C2.
    apply list_lookup_insert_eq. lia.
  - constructor; [constructor|by intros r ?%elem_of_nil|]. intros i Hin _.
    rewrite C2, list_lookup_insert_ne by lia.
    destruct (lookup_lt_is_Some_2 (contents d) (N.to_nat (1 + i))) as [b' Hb']; [lia|].
    by rewrite Hb', (Hblank _ _ Hb').
  - exists (Superblock.data_start sb). split_and!; [done|lia..|constructor].
Qed.

Lemma format_pending (d : D) s : BlockStorage.format d = Return (Ok s) → BlockStorage.pending s = ∅.
Proof.
  unfold BlockStorage.format. intros ([sb|e] & _ & E)%bind_Return; [|done]. revert E.
  destruct (superblock_to_vec sb); [|done]. destruct (_ <? _); [done|].
  destruct (write_block _ _ _) as [[|] ?]; [|done]. destruct (flush _) as [[|] ?]; [|done].
  by intros [= <-].
Qed.

(** *** Reading back *)

Lemma read_data_spec m a data s : device_wf (BlockStorage.device s) →
  len data ≤ N.of_nat m * BLOCK_SIZE →
  (∀ j, (j < m)%nat → contents (BlockStorage.device s) !! (N.to_nat a + j)%nat
                      = Some (BlockStorage.padded (chunk data j))) →
  ∃ s', BlockStorage.read_data (range a (a + N.of_nat m)) (len data) s = Return (Ok data, s').
Proof.
  revert a data s. induction m as [|m IH]; intros a data s Hwf Hlen Hc.
  { rewrite range_nil by lia. exists s. destruct data; [done|]. unfold len in Hlen. simpl in Hlen. lia. }
  rewrite range_cons by lia. cbn [BlockStorage.read_data].
  pose proof (Hc 0%nat ltac:(lia)) as H0'. rewrite Nat.add_0_r in H0'.
  destruct (read_spec _ _ _ Hwf H0') as (d & E & Cd & Wd).
  unfold BlockStorage.on_device at 1. rewrite E. cbn [map_err try_bind].
  set (s1 := s <| BlockStorage.device := d |>).
  assert (take (N.to_nat (N.min (len data) BLOCK_SIZE)) (BlockStorage.padded (chunk data 0))
    = take block_nat data) as ->.
  { unfold BlockStorage.padded, copy_from_slice, chunk. rewrite drop_0.
    assert (length (take block_nat data) = N.to_nat (N.min (len data) BLOCK_SIZE)) as <-
      by (unfold len, block_nat; rewrite length_take; lia).
    apply take_app_length. }
  destruct (N.eqb_spec (len data - N.min (len data) BLOCK_SIZE) 0) as [Hz|Hz].
  { exists s1. rewrite take_ge; [done|]. unfold len, block_nat in *. lia. }
  assert (len data - N.min (len data) BLOCK_SIZE = len (drop block_nat data)) as ->
    by (unfold len, block_nat; rewrite length_drop; lia).
  replace (a + N.of_nat (S m)) with (a + 1 + N.of_nat m) by lia.
  destruct (IH (a + 1) (drop block_nat data) s1) as (s2 & ->); [done| | |].
  - unfold len, block_nat in *. rewrite length_drop. lia.
  - intros j Hj. simpl. rewrite Cd. replace (N.to_nat (a + 1) + j)%nat with (N.to_nat a + S j)%nat by lia.
    rewrite Hc by lia. unfold chunk. by rewrite drop_drop.
  - cbn [try_bind]. exists s2. by rewrite take_drop.
Qed.

(** The last write of a version, and the last version of an object. *)
Definition writes_version (o : ObjectId.t) (v : VersionId.t) (w : PendingWrite.t) : bool :=
  bool_decide (PendingWrite.object_id w = o ∧ PendingWrite.version_id w = v).
Definition writes_object (o : ObjectId.t) (w : PendingWrite.t) : bool :=
  bool_decide (PendingWrite.object_id w = o).

Lemma index_lookup c lo hi ws l o v w :
  Forall2 (stored c lo hi) ws l → rfind (writes_version o v) ws = Some w →
  ∃ a, foldl (λ m a, <[(AllocationEntry.object_id a, AllocationEntry.version_id a) := a]> m)
         (∅ : gmap _ AllocationEntry.t) l !! (o, v) = Some a ∧ stored c lo hi w a.
Proof.
  revert l. induction ws as [|w' ws IH] using rev_ind; [done|].
  intros l (l0 & l1 & HF & (a & [] & Ha & HF'%Forall2_nil_inv_l & ->)%Forall2_cons_inv_l & ->)%Forall2_app_inv_l;
    [|done].
  rewrite rfind_snoc, foldl_app. simpl. unfold writes_version at 1.
  case_bool_decide as Hm.
  - intros [= ->]. destruct Hm as [<- <-]. exists a.
    by rewrite (stored_object _ _ _ _ _ Ha), (stored_version _ _ _ _ _ Ha), lookup_insert_eq.
  - intros Hw. rewrite lookup_insert_ne; [by apply IH|].
    rewrite (stored_object _ _ _ _ _ Ha), (stored_version _ _ _ _ _ Ha). intros E. apply Hm. by simplify_eq.
Qed.

Lemma latest_lookup c lo hi ws l o :
  Forall2 (stored c lo hi) ws l →
  foldl (λ m a, <[AllocationEntry.object_id a := AllocationEntry.version_id a]> m)
    (∅ : gmap _ VersionId.t) l !! o
  = PendingWrite.version_id <$> rfind (writes_object o) ws.
Proof.
  revert l. induction ws as [|w' ws IH] using rev_ind.
  { intros l ->%Forall2_nil_inv_l. done. }
  intros l (l0 & l1 & HF & (a & [] & Ha & HF'%Forall2_nil_inv_l & ->)%Forall2_cons_inv_l & ->)%Forall2_app_inv_l;
    [|done].
  rewrite rfind_snoc, foldl_app. simpl. unfold writes_object at 1.
  rewrite (stored_object _ _ _ _ _ Ha), (stored_version _ _ _ _ _ Ha).
  case_bool_decide as Hm; [subst; by rewrite lookup_insert_eq|].
  rewrite lookup_insert_ne by done. by apply IH.
Qed.

(** ** Sessions

    From formatting a blank device on: writes, rollbacks, reads and attempts to commit,
    each attempt recorded with its writes and whether it reported success. *)
Inductive session (d0 : D) : BlockStorage.t D → list (list PendingWrite.t * bool) → Prop :=
| session_format s : BlockStorage.format d0 = Return (Ok s) → session d0 s []
| session_write s attempts drawn o data tx :
    session d0 s attempts → session d0 (BlockStorage.write drawn o data (tx, s)).2.2 attempts
| session_rollback s attempts tx :
    session d0 s attempts → session d0 (BlockStorage.rollback (tx, s)).2.2 attempts
| session_read s attempts o v r s' :
    session d0 s attempts → BlockStorage.read_object_data o v s = Return (r, s') →
    session d0 s' attempts
| session_commit s attempts tx ws r tx' s' :
    session d0 s attempts → Transaction.is_active tx = true →
    BlockStorage.pending s !! Transaction.id tx = Some ws →
    BlockStorage.commit (tx, s) = Return (r, (tx', s')) →
    session d0 s' (attempts ++ [(ws, is_ok r)]).

(** The commits that survive a crash: all that reported success, and possibly some whose
    failure came after their record was written; in order. *)
Inductive survivors : list (list PendingWrite.t * bool) → list (list PendingWrite.t) → Prop :=
| survivors_nil : survivors [] []
| survivors_kept l log ws b : survivors l log → survivors (l ++ [(ws, b)]) (log ++ [ws])
| survivors_lost l log ws : survivors l log → survivors (l ++ [(ws, false)]) log.

Lemma read_data_frame blocks n s r s' : device_wf (BlockStorage.device s) →
  BlockStorage.read_data blocks n s = Return (r, s') →
  s' = s <| BlockStorage.device := BlockStorage.device s' |> ∧
  device_wf (BlockStorage.device s') ∧
  contents (BlockStorage.device s') = contents (BlockStorage.device s).
Proof.
  revert n s r. induction blocks as [|b blocks IH]; intros n s r Hwf; cbn [BlockStorage.read_data].
  { intros [= <- <-]. by destruct s. }
  unfold BlockStorage.on_device at 1.
  destruct (read_block b zero_block _) as [[blk|e] d] eqn:E;
    apply read_frame in E as (W & C); try done; cbn [try_bind map_err]; [|by intros [= <- <-]].
  destruct (_ =? 0); [by intros [= <- <-]|].
  intros [(x & s1 & E1 & [= <- <-])|(e & E1 & ->)]%try_bind_Return;
    apply IH in E1 as (E1 & W1 & C1); try done; split_and!; try done;
    try (by rewrite C1); rewrite E1 at 1; by destruct s.
Qed.

Lemma read_object_data_frame o v s r s' : device_wf (BlockStorage.device s) →
  BlockStorage.read_object_data o v s = Return (r, s') →
  s' = s <| BlockStorage.device := BlockStorage.device s' |> ∧
  device_wf (BlockStorage.device s') ∧
  contents (BlockStorage.device s') = contents (BlockStorage.device s).
Proof.
  intros Hwf. unfold BlockStorage.read_object_data.
  destruct (omap _ _) as [|w ?]; [|intros [= <- <-]; by destruct s].
  destruct (_ !! (o, v)) as [a|]; [|intros [= <- <-]; by destruct s].
  intros (x & _ & E)%bind_Return. by apply read_data_frame in E.
Qed.

Lemma durable_same_contents a s recs log s' :
  durable a s recs log → s' = s <| BlockStorage.device := BlockStorage.device s' |> →
  device_wf (BlockStorage.device s') →
  contents (BlockStorage.device s') = contents (BlockStorage.device s) → durable a s' recs log.
Proof.
  intros [D1 D2 D3 D4 D5 D6] E W C.
  assert (BlockStorage.superblock s' = BlockStorage.superblock s) as Es by (rewrite E; done).
  assert (BlockStorage.free_blocks s' = BlockStorage.free_blocks s) as Ef by (rewrite E; done).
  constructor; rewrite ?C, ?Es, ?Ef; done.
Qed.

Lemma session_durable d0 s attempts : device_wf d0 → blank d0 → session d0 s attempts →
  len attempts < log_blocks (block_count d0) →
  Superblock.commit_log_blocks (BlockStorage.superblock s) = log_blocks (block_count d0) ∧
  ∃ recs log, durable (len attempts) s recs log ∧ survivors attempts log.
Proof.
  intros Hwf Hb. induction 1 as [s Hs|s l drawn o data tx _ IH|s l tx _ IH
    |s l o v r s' _ IH Er|s l tx ws r tx' s' _ IH Hact Hp Hc]; intros Hlen.
  - destruct (format_durable d0 s) as [Hd Hl]; try done. split; [done|].
    exists [], []. split; [done|constructor].
  - destruct (IH Hlen) as (Hl & recs & log & Hd & Hs). unfold BlockStorage.write.
    destruct (Transaction.is_active tx); simpl; (split; [done|]); exists recs, log;
      (split; [|done]); [by eapply durable_ext|done].
  - destruct (IH Hlen) as (Hl & recs & log & Hd & Hs). unfold BlockStorage.rollback.
    destruct (Transaction.is_active tx); simpl; (split; [done|]); exists recs, log;
      (split; [|done]); [by eapply durable_ext|done].
  - destruct (IH Hlen) as (Hl & recs & log & Hd & Hs).
    apply read_object_data_frame in Er as (E & W & C); [|apply Hd].
    split; [rewrite E; done|]. exists recs, log. split; [by eapply durable_same_contents|done].
  - unfold len in *. rewrite length_app in *. simpl in *.
    destruct IH as (Hl & recs & log & Hd & Hs); [lia|].
    rewrite Hact, Hp in Hc. simpl in Hc. apply bind_Return in Hc as ([r0 s0] & Hc & E).
    set (s1 := s <| BlockStorage.pending ::= _ |>) in Hc.
    assert (durable (len l) s1 recs log) as Hd1 by (by eapply durable_ext).
    assert (len l + 1 < Superblock.commit_log_blocks (BlockStorage.superblock s1)) as Hlt
      by (unfold len; simpl; lia).
    destruct (commit_pending_durable _ _ _ _ _ _ _ _ Hd1 Hlt Hc)
      as (recs' & log' & Hd' & Hn' & Hcase).
    assert (s0 = s' ∧ is_ok r = is_ok r0) as [<- Hr].
    { unfold Transaction.commit in E. rewrite Hact in E. by destruct r0; simplify_eq/=. }
    split; [by rewrite Hn'|]. exists recs', log'. rewrite Nat2N.inj_add. split; [done|].
    rewrite Hr. destruct Hcase as [->|[Hf ->]]; [by constructor|]. rewrite Hf. by constructor.
Qed.
(** Reading a stored version. *)
Lemma read_stored lo hi o v w a s :
  device_wf (BlockStorage.device s) → BlockStorage.pending s = ∅ →
  BlockStorage.allocations s !! (o, v) = Some a →
  stored (contents (BlockStorage.device s)) lo hi w a → hi ≤ u64_max →
  ∃ s', BlockStorage.read_object_data o v s = Return (Ok (PendingWrite.data w), s').
Proof.
  intros Hwf Hp Ha [S1 S2 S3 S4 S5 S6] Hhi. unfold BlockStorage.read_object_data.
  rewrite Hp, Ha. simpl. rewrite S3.
  assert (add_u64 (AllocationEntry.block_idx a) (BlockStorage.blocks_for (len (PendingWrite.data w)))
    = Return (AllocationEntry.block_idx a + BlockStorage.blocks_for (len (PendingWrite.data w)))) as ->
    by (apply add_u64_Return; lia).
  simpl. rewrite <- (N2Nat.id (BlockStorage.blocks_for _)). apply read_data_spec; [done| |done].
  rewrite N2Nat.id. apply blocks_for_spec.
Qed.

(** A commit that succeeds indexes its writes, with their data on the device. *)
Lemma commit_pending_stored a s recs log id ws s' :
  durable a s recs log → a + 1 < Superblock.commit_log_blocks (BlockStorage.superblock s) →
  BlockStorage.commit_pending id ws s = Return (Ok tt, s') →
  device_wf (BlockStorage.device s') ∧
  ∃ allocs s1, s' = foldl BlockStorage.index_allocation s1 allocs ∧
    Forall2 (stored (contents (BlockStorage.device s'))
      (Superblock.data_start (BlockStorage.superblock s)) u64_max) ws allocs.
Proof.
  intros Hd Ha. pose proof (dur_data _ _ _ _ Hd) as (f & Hf & Hlo & Hhi & Hdata).
  unfold BlockStorage.commit_pending. intros (allocs & s1 & E1 & E2)%try_bind_Ok.
  apply (store_writes_spec ws (Superblock.total_blocks (BlockStorage.superblock s)) f)
    in E1 as (f1 & X & S1); [|apply Hd|done|done].
  assert (durable a s1 recs log) as Hd1 by (eapply durable_extends; try done; lia).
  assert (BlockStorage.superblock s1 = BlockStorage.superblock s) as Hsb
    by (rewrite (ext_same _ _ _ _ _ X); done).
  pose proof (dur_geo _ _ _ _ Hd1) as [G1 G2 G3 G4 G5 G6].
  pose proof (dur_seq _ _ _ _ Hd1). pose proof (ext_le _ _ _ _ _ X).
  apply try_bind_Ok in E2 as ([] & s2 & E2 & [= <-]).
  destruct (write_commit_record_spec id allocs s1 recs) as (r2 & s3 & E & _ & W & A & _);
    [apply Hd1..|rewrite Hsb in *; lia|apply Hd1|apply Hd1|].
  rewrite E in E2. injection E2 as -> <-.
  destruct (foldl_index_same allocs s3) as (-> & _ & _). split; [done|].
  exists allocs, s3. split; [done|]. eapply Forall2_impl; [by apply S1|]. intros w al Hs.
  rewrite Hsb in *. eapply stored_weaken; [eapply stored_frame; [done..|lia]|lia..].
Qed.
End store.

(** The writes of open transactions and the index of the committed ones are not touched by what a
    commit does on the device. *)
Section pending.
Context {D : Type} `{BlockDevice D} `{StorageJson}.
Definition books (s : BlockStorage.t D) :=
  (BlockStorage.pending s, BlockStorage.allocations s, BlockStorage.latest_versions s).
Definition keeps_books {A} (f : BlockStorage.t D → outcome (result A BlockStorageError.t * BlockStorage.t D))
    : Prop :=
  ∀ s r s', f s = Return (r, s') → books s' = books s.

Lemma keeps_on_device {A} (g : D → result A BlockError.t * D) :
  keeps_books (BlockStorage.on_device g).
Proof. intros s r s'. unfold BlockStorage.on_device. destruct (g _). by intros [= <- <-]. Qed.
Lemma keeps_return {A} (r : result A BlockStorageError.t) : keeps_books (λ s, Return (r, s)).
Proof. by intros s r' s' [= <- <-]. Qed.
Lemma keeps_try {A B} f (g : A → BlockStorage.t D → outcome (result B BlockStorageError.t * BlockStorage.t D)) :
  keeps_books f → (∀ a, keeps_books (g a)) → keeps_books (λ s, try_bind (f s) (g)).
Proof.
  intros Hf Hg s r s' [(a & s1 & E1 & E2)|(e & E & ->)]%try_bind_Return; [|by eapply Hf].
  apply Hg in E2. apply Hf in E1. congruence.
Qed.
Hint Resolve keeps_on_device keeps_return : core.

Lemma keeps_write_superblock : keeps_books BlockStorage.write_superblock.
Proof.
  intros s r s'. unfold BlockStorage.write_superblock.
  destruct (superblock_to_vec _); [|by intros [= <- <-]].
  destruct (_ <? _); [by intros [= <- <-]|].
  apply (keeps_try (BlockStorage.on_device _)); [auto|]. intros _. by apply keeps_try.
Qed.
Lemma keeps_write_commit_record id l : keeps_books (BlockStorage.write_commit_record id l).
Proof.
  intros s r s'. unfold BlockStorage.write_commit_record. intros (q & _ & E)%bind_Return. revert E.
  set (s0 := s <| BlockStorage.superblock ::= _ |>).
  change (books s) with (books s0).
  destruct (record_to_vec _); [|by intros [= <- <-]].
  destruct (_ <? _); [by intros [= <- <-]|]. destruct (_ =? _); [done|].
  intros (i & _ & E)%bind_Return. revert E.
  apply (keeps_try (BlockStorage.on_device _)); [auto|]. intros _.
  apply keeps_try; [auto|]. intros _. apply keeps_try; [apply keeps_write_superblock|auto].
Qed.
Lemma keeps_write_chunks bs data : keeps_books (BlockStorage.write_chunks bs data).
Proof.
  revert data. induction bs as [|b bs IH]; intros data; [apply keeps_return|].
  intros s. apply (keeps_try (BlockStorage.on_device _)); [auto|]. intros _. apply IH.
Qed.
Lemma keeps_store_write w : keeps_books (BlockStorage.store_write w).
Proof.
  apply keeps_try.
  - intros s r s'. unfold BlockStorage.allocate_blocks. destruct (_ <? _); [by intros [= <- <-]|].
    destruct (BlockStorage.take_free _ _). by intros [= <- <-].
  - intros [|b bs]; [done|]. apply keeps_try; [|auto].
    apply keeps_try; [apply keeps_write_chunks|]. intros _. by apply keeps_try.
Qed.
Lemma keeps_store_writes ws : keeps_books (BlockStorage.store_writes ws).
Proof.
  induction ws as [|w ws IH]; [apply keeps_return|].
  intros s. apply (keeps_try (BlockStorage.store_write w)); [apply keeps_store_write|].
  intros a. by apply keeps_try.
Qed.
Lemma keeps_commit_pending id ws s r s' :
  BlockStorage.commit_pending id ws s = Return (r, s') → BlockStorage.pending s' = BlockStorage.pending s.
Proof.
  unfold BlockStorage.commit_pending.
  intros [(l & s1 & [= Hp _ _]%keeps_store_writes & E2)|(e' & [= Hp _ _]%keeps_store_writes & _)]%try_bind_Return;
    rewrite <-Hp; [|done].
  apply try_bind_Return in E2 as [(u & s2 & [= <- _ _]%keeps_write_commit_record & [= _ <-])|
    (e' & [= <- _ _]%keeps_write_commit_record & _)]; [|done].
  clear. revert s2. induction l as [|a l IH]; intros s2; [done|]. simpl. by rewrite IH.
Qed.
Lemma keeps_failed_commit id ws s e s' :
  BlockStorage.commit_pending id ws s = Return (Err e, s') → books s' = books s.
Proof.
  unfold BlockStorage.commit_pending.
  intros [(l & s1 & E1%keeps_store_writes & E2)|(e' & E & _)]%try_bind_Return; [|by apply keeps_store_writes in E].
  apply try_bind_Return in E2 as [(u & s2 & _ & [=])|(e' & E%keeps_write_commit_record & _)]. congruence.
Qed.
End pending.

Module BlockSpec.
(** C11: crash safety of the block store.  Format a blank device and use the store in any
    way (writes, reads, rollbacks, commits), with any write or flush of the device
    failing at any moment, with fewer attempts to commit than the log has blocks.
    Opening the device afterwards succeeds and finds the commits that survived: every
    commit that reported success, as a whole and in order, and of those that failed each
    as a whole or not at all.  The latest version of every object is the last surviving
    one, and reading any surviving version returns the bytes that were written. *)
Theorem crash_recovery_is_atomic `{DeviceSpec D} `{StorageJsonSpec} `{UuidFormat}
    (d0 : D) (s : BlockStorage.t D) attempts :
  device_wf d0 → blank d0 → session d0 s attempts →
  len attempts < log_blocks (block_count d0) →
  ∃ log s', survivors attempts log ∧
    BlockStorage.open (BlockStorage.device s) = Return (Ok s') ∧
    BlockStorage.pending s' = ∅ ∧
    (∀ o, BlockStorage.latest_versions s' !! o
          = PendingWrite.version_id <$> rfind (writes_object o) (concat log)) ∧
    (∀ o v w, rfind (writes_version o v) (concat log) = Some w →
       ∃ s'', BlockStorage.read_object_data o v s' = Return (Ok (PendingWrite.data w), s'')).
Proof.
  intros Hwf Hb Hs Hlen. destruct (session_durable d0 s attempts) as (Hl & recs & log & Hd & Hsv);
    try done.
  destruct (open_durable _ _ _ _ Hd) as (q & s' & Ho & [R1 R2 R3 R4 R5 R6]); [by rewrite Hl|].
  destruct (dur_data _ _ _ _ Hd) as (f & _ & _ & Hf & HF).
  assert (Forall2 (stored (contents (BlockStorage.device s))
    (Superblock.data_start (BlockStorage.superblock s)) f) (concat log) (allocs_of recs)) as HF'.
  { clear -HF. induction HF as [|ws r log recs Hw _ IH]; simpl; [constructor|].
    by apply Forall2_app. }
  exists log, s'. split_and!; try done.
  - intros o. rewrite R6. by eapply latest_lookup.
  - intros o v w Hw. destruct (index_lookup _ _ _ _ _ _ _ _ HF' Hw) as (a & Ha & Hst).
    pose proof (dur_geo _ _ _ _ Hd) as [_ _ _ _ _ Hmax].
    eapply read_stored; [done|done|by rewrite R5|by rewrite R2|lia].
Qed.

(** A file reads back: in any session with room in the log and no open writes, a file
    written by the file system is read back by it, byte for byte. *)
Theorem written_file_reads_back `{DeviceSpec D} `{StorageJsonSpec} `{UuidFormat}
    (d0 : D) attempts (fs : PersistentFilesystem.t D) o drawn content fs' t :
  device_wf d0 → blank d0 → session d0 (PersistentFilesystem.storage fs) attempts →
  len attempts + 1 < log_blocks (block_count d0) →
  BlockStorage.pending (PersistentFilesystem.storage fs) = ∅ →
  PersistentFilesystem.write_file o drawn content fs = Return (Ok o, fs') →
  ∃ fs'', PersistentFilesystem.read_file t o fs' = Return (Ok content, fs'').
Proof.
  intros Hwf Hb Hs Hlen Hp.
  unfold PersistentFilesystem.write_file, PersistentFilesystem.on_storage, PersistentFilesystem.put.
  intros (v & f1 & ([r s1] & E & [= -> <-])%bind_Return & [= <-])%try_bind_Ok. simpl in *.
  apply bind_Return in E as ([r [tx s2]] & E & [= Hr <-]). simpl in E. destruct drawn as [dt dv].
  rewrite Hp in E. unfold JournaledStorage.push_entry in E.
  rewrite lookup_insert_eq, lookup_total_empty in E. simpl in E.
  apply bind_Return in E as ([r1 s3] & E & E').
  destruct (session_durable d0 _ attempts Hwf Hb Hs) as (Hl & recs & log & Hd & _); [lia|].
  set (s0 := (PersistentFilesystem.storage fs) <| BlockStorage.pending ::= _ |>
               <| BlockStorage.pending ::= _ |>) in E.
  assert (r1 = Ok tt ∧ s3 = s2) as [-> ->].
  { destruct r1 as [[]|e]; [by injection E'|]. injection E' as <- _ _. discriminate Hr. }
  pose proof (keeps_commit_pending _ _ _ _ _ E) as Hp3. simpl in Hp3.
  rewrite delete_insert_eq, Hp, delete_empty in Hp3.
  assert (durable (len attempts) s0 recs log) as Hd0 by (by eapply durable_ext).
  destruct (commit_pending_stored _ _ _ _ _ _ _ Hd0 ltac:(simpl; lia) E)
    as (W & allocs & s1 & -> & HF).
  apply Forall2_cons_inv_l in HF as (al & [|] & Hal & HF & ->); [|by apply Forall2_nil_inv_l in HF].
  assert (BlockStorage.latest_versions (BlockStorage.index_allocation s1 al) !! o = Some dv ∧
    BlockStorage.allocations (BlockStorage.index_allocation s1 al) !! (o, dv) = Some al) as [Hlv Hal'].
  { pose proof (stored_object _ _ _ _ _ Hal) as Ho. pose proof (stored_version _ _ _ _ _ Hal) as Hv.
    cbn [PendingWrite.object_id PendingWrite.version_id] in Ho, Hv. rewrite <- Ho, <- Hv.
    split; apply lookup_insert_eq. }
  cbn [foldl] in *. revert Hlv Hal' Hal Hp3 W. generalize (BlockStorage.index_allocation s1 al). clear.
  intros s Hlv Ha Hal Hp W.
  unfold PersistentFilesystem.read_file, PersistentFilesystem.on_storage, PersistentFilesystem.get.
  simpl. unfold BlockStorage.read. rewrite Hp, lookup_empty, Hlv. simpl.
  destruct (read_stored _ _ _ _ _ _ _ W Hp Ha Hal ltac:(done)) as (s' & ->). simpl. by eexists.
Qed.
(** *** An instance of the codec

    Numbers as zero-free digit strings; used to evaluate examples. *)
Fixpoint digits (p : positive) : list N :=
  match p with xH => [3] | xO p => 1 :: digits p | xI p => 2 :: digits p end.
Fixpoint undigits (l : list N) : option positive :=
  match l with
  | [3] => Some xH
  | 1 :: l => xO <$> undigits l
  | 2 :: l => xI <$> undigits l
  | _ => None
  end.
Lemma undigits_digits p : undigits (digits p) = Some p.
Proof. induction p as [p IH|p IH|]; simpl; by rewrite ?IH. Qed.
Lemma digits_nonzero p : Forall (λ x, x ≠ 0) (digits p) ∧ digits p ≠ [].
Proof. induction p as [p [IH _]|p [IH _]|]; simpl; split; auto. Qed.

Definition numbers_to_vec (l : list N) : list N := digits (encode l).
Definition numbers_from_slice (b : list N) : option (list N) := p ← undigits b; decode p.
Lemma numbers_roundtrip l : numbers_from_slice (numbers_to_vec l) = Some l.
Proof.
  unfold numbers_from_slice, numbers_to_vec. rewrite undigits_digits. simpl. apply decode_encode.
Qed.

Definition superblock_numbers (sb : Superblock.t) : list N :=
  [Superblock.magic sb; Superblock.version sb; Superblock.total_blocks sb; Superblock.bitmap_start sb;
   Superblock.bitmap_blocks sb; Superblock.data_start sb; Superblock.commit_log_start sb;
   Superblock.commit_log_blocks sb; Superblock.commit_sequence sb].
Definition numbers_superblock (l : list N) : option Superblock.t :=
  match l with
  | [a; b; c; d; e; f; g; h; i] => Some (Superblock.mk a b c d e f g h i)
  | _ => None
  end.
Definition allocation_numbers (a : AllocationEntry.t) : list N :=
  [ObjectId.as_uuid (AllocationEntry.object_id a); VersionId.as_uuid (AllocationEntry.version_id a);
   AllocationEntry.block_idx a; AllocationEntry.size_bytes a].
Fixpoint numbers_allocations (l : list N) : option (list AllocationEntry.t) :=
  match l with
  | [] => Some []
  | o :: v :: b :: n :: l =>
      cons (AllocationEntry.mk (ObjectId.from_uuid o) (VersionId.from_uuid v) b n)
        <$> numbers_allocations l
  | _ => None
  end.
Definition record_numbers (r : CommitRecord.t) : list N :=
  TransactionId.as_uuid (CommitRecord.transaction_id r) :: CommitRecord.sequence r ::
  CommitRecord.checksum r :: (CommitRecord.allocations r ≫= allocation_numbers).
Definition numbers_record (l : list N) : option CommitRecord.t :=
  match l with
  | t :: q :: c :: l =>
      (λ al, CommitRecord.mk (TransactionId.mk t) q al c) <$> numbers_allocations l
  | _ => None
  end.

Lemma numbers_allocations_roundtrip l :
  numbers_allocations (l ≫= allocation_numbers) = Some l.
Proof.
  induction l as [|[[o] [v] b n] l IH]; [done|].
  rewrite bind_cons. cbn [allocation_numbers app numbers_allocations]. by rewrite IH.
Qed.

Definition sample_json : StorageJson := {|
  superblock_to_vec sb := Some (numbers_to_vec (superblock_numbers sb));
  superblock_from_slice b := l ← numbers_from_slice b; numbers_superblock l;
  record_to_vec r := Some (numbers_to_vec (record_numbers r));
  record_from_slice b := l ← numbers_from_slice b; numbers_record l;
  directory_to_vec _ := None;
  directory_from_slice _ := None;
  to_vec_error _ := "unsupported";
  from_slice_error _ := "unsupported";
  crc32 b := sumN b mod 2 ^ 32
|}.

Lemma sample_json_spec : @StorageJsonSpec sample_json.
Proof.
  constructor.
  - intros sb b [= <-]. split; [|apply digits_nonzero]. simpl. rewrite numbers_roundtrip. simpl.
    by destruct sb.
  - intros [[t] q al c] b [= <-]. split; [|apply digits_nonzero].
    cbn [record_from_slice sample_json]. rewrite numbers_roundtrip.
    cbn [mbind option_bind record_numbers numbers_record CommitRecord.allocations
      CommitRecord.transaction_id TransactionId.as_uuid CommitRecord.sequence CommitRecord.checksum].
    by rewrite numbers_allocations_roundtrip.
Qed.

#[local] Existing Instance sample_json.
#[local] Existing Instance sample_json_spec.
#[local] Existing Instance sample_format.

(** A device of 60 blocks (three of them for the log) that fails from its sixth write on. *)
Notation sample_storage := (BlockStorage.t (FailingBlockDevice.t RamDisk.t)).
Definition sample_device : FailingBlockDevice.t RamDisk.t :=
  FailingBlockDevice.new (RamDisk.new 60) (FailurePolicy.AfterWrites 6).
Definition sample_tx (n : N) : Transaction.t := Transaction.new (TransactionId.mk n).

(** Transaction [n] writes [data] as version [n] of object [n] and commits. *)
Definition write_one (n : N) (data : list N) (s : sample_storage) : sample_storage :=
  (BlockStorage.write (VersionId.from_uuid n) (ObjectId.from_uuid n) data (sample_tx n, s)).2.2.
Definition commit_one (n : N) (data : list N) (s : sample_storage) : outcome (bool * sample_storage) :=
  '(r, (_, s)) ← BlockStorage.commit (sample_tx n, write_one n data s); Return (is_ok r, s).
(** Opening the device of [s] again after a crash, with failures from now on as [p] says. *)
Definition reopen (p : FailurePolicy.t) (s : sample_storage) : outcome sample_storage :=
  r ← BlockStorage.open (FailingBlockDevice.set_policy p (BlockStorage.device s));
  match r with Ok s => Return s | Err _ => Panic end.
Definition formatted (d : FailingBlockDevice.t RamDisk.t) : outcome sample_storage :=
  r ← BlockStorage.format d;
  match r with Ok s => Return s | Err _ => Panic end.
(** The data of version [n] of object [n], if it is found. *)
Definition fetch (n : N) (s : sample_storage) : option (list N) :=
  match BlockStorage.read_object_data (ObjectId.from_uuid n) (VersionId.from_uuid n) s with
  | Return (Ok data, _) => Some data
  | _ => None
  end.

(** Two commits on the sample device: the second reports failure, because the flush after
    its record fails. *)
Definition two_commits : outcome (bool * bool * sample_storage) :=
  s ← formatted sample_device;
  '(b1, s) ← commit_one 1 [11] s;
  '(b2, s) ← commit_one 2 [22] s;
  Return (b1, b2, s).

Lemma commit_one_session d0 s l n data b s' :
  session d0 s l → commit_one n data s = Return (b, s') →
  ∃ ws, session d0 s' (l ++ [(ws, b)]).
Proof.
  intros Hs. unfold commit_one. intros ([r [tx' s1]] & E & [= <- <-])%bind_Return.
  eexists. eapply (session_commit _ _ _ (sample_tx n)); [|done| |exact E];
    [by apply session_write|]. simpl. unfold JournaledStorage.push_entry. apply lookup_insert_eq.
Qed.

Lemma blank_sample : blank sample_device.
Proof. intros i b Hb. by apply lookup_replicate in Hb as [-> _]. Qed.

Lemma crash_recovery_is_atomic_witness :
  match two_commits with
  | Return (b1, b2, s) => b1 = true ∧ b2 = false ∧
      ∃ ws1 ws2 log s', survivors [(ws1, true); (ws2, false)] log ∧
        BlockStorage.open (BlockStorage.device s) = Return (Ok s') ∧
        BlockStorage.pending s' = ∅ ∧
        (∀ o, BlockStorage.latest_versions s' !! o
              = PendingWrite.version_id <$> rfind (writes_object o) (concat log)) ∧
        (∀ o v w, rfind (writes_version o v) (concat log) = Some w →
           ∃ s'', BlockStorage.read_object_data o v s' = Return (Ok (PendingWrite.data w), s''))
  | _ => False
  end.
Proof.
  assert (match two_commits with Return (true, false, _) => true | _ => false end = true) as Hr
    by (vm_compute; reflexivity).
  destruct two_commits as [[[[] []] s]| |] eqn:E; try discriminate Hr. clear Hr.
  unfold two_commits in E. apply bind_Return in E as (s0 & E0 & E).
  apply bind_Return in E as ([b1 s1] & E1 & E). apply bind_Return in E as ([b2 s2] & E2 & E).
  injection E as -> -> <-.
  assert (session sample_device s0 []) as S0.
  { apply session_format. unfold formatted in E0. apply bind_Return in E0 as ([?|?] & E0 & E').
    - by injection E' as <-.
    - discriminate E'. }
  destruct (commit_one_session _ _ _ _ _ _ _ S0 E1) as [ws1 S1].
  destruct (commit_one_session _ _ _ _ _ _ _ S1 E2) as [ws2 S2].
  split; [done|]. split; [done|]. exists ws1, ws2.
  apply (crash_recovery_is_atomic sample_device s2 [(ws1, true); (ws2, false)]);
    [apply ram_disk_new_wf|apply blank_sample|exact S2|by vm_compute].
Defined.

Lemma written_file_reads_back_witness :
  match s ← formatted (FailingBlockDevice.new (RamDisk.new 60) FailurePolicy.Never);
        PersistentFilesystem.write_file (ObjectId.from_uuid 5)
          (TransactionId.mk 6, VersionId.from_uuid 7) [1; 2; 3]
          (PersistentFilesystem.mk s (ObjectId.from_uuid 1)) with
  | Return (Ok o, fs') =>
      ∃ fs'', PersistentFilesystem.read_file (TransactionId.mk 8) (ObjectId.from_uuid 5) fs'
              = Return (Ok [1; 2; 3], fs'')
  | _ => False
  end.
Proof.
  set (d0 := FailingBlockDevice.new (RamDisk.new 60) FailurePolicy.Never).
  assert (match s ← formatted d0;
            PersistentFilesystem.write_file (ObjectId.from_uuid 5)
              (TransactionId.mk 6, VersionId.from_uuid 7) [1; 2; 3]
              (PersistentFilesystem.mk s (ObjectId.from_uuid 1)) with
          | Return (Ok o, _) => bool_decide (o = ObjectId.from_uuid 5) | _ => false end = true) as Hr
    by (vm_compute; reflexivity).
  destruct (formatted d0) as [s| |] eqn:E0; [|discriminate Hr..].
  assert (session d0 s [] ∧ BlockStorage.pending s = ∅) as [S0 P0].
  { unfold formatted in E0. apply bind_Return in E0 as ([s0|?] & E0 & E'); [|discriminate E'].
    injection E' as <-. split; [by apply session_format|by apply format_pending in E0]. }
  cbn [mbind outcome_bind] in *.
  destruct (PersistentFilesystem.write_file _ _ _ _) as [[[o|e] fs']| |] eqn:E; try discriminate Hr.
  apply bool_decide_eq_true in Hr as ->.
  apply (written_file_reads_back d0 [] (PersistentFilesystem.mk s (ObjectId.from_uuid 1))
    (ObjectId.from_uuid 5) (TransactionId.mk 6, VersionId.from_uuid 7) [1; 2; 3]);
    [apply ram_disk_new_wf| |exact S0|by vm_compute|exact P0|exact E].
  intros i b Hb. by apply lookup_replicate in Hb as [-> _].
Defined.

(** The commit log forgets: after as many commits as the log has blocks, the record
    of the newest is in the first slot, and opening the device discards the records of
    all the others, so that committed objects are gone.  On a device of 40 blocks, two
    commits that both report success leave only the second. *)
Theorem full_log_loses_commits :
  match
    s ← formatted (FailingBlockDevice.new (RamDisk.new 40) FailurePolicy.Never);
    '(b1, s) ← commit_one 1 [11] s;
    '(b2, s) ← commit_one 2 [22] s;
    s' ← reopen FailurePolicy.Never s;
    Return (b1, b2, fetch 1 s, fetch 2 s, fetch 1 s', fetch 2 s')
  with
  | Return r => r = (true, true, Some [11], Some [22], None, Some [22])
  | _ => False
  end.
Proof. vm_compute. reflexivity. Qed.

(** A recovered commit can be overwritten: when a crash comes after the commit record
    and before the superblock, opening the device recovers the commit, but numbers the
    next commit like it, which then takes its slot in the log. *)
Theorem recovered_commit_is_overwritten :
  match
    '(b1, b2, s) ← two_commits;
    s ← reopen FailurePolicy.Never s;
    '(b3, s3) ← commit_one 3 [33] s;
    s' ← reopen FailurePolicy.Never s3;
    Return (fetch 2 s, b3, fetch 2 s')
  with
  | Return r => r = (Some [22], true, None)
  | _ => False
  end.
Proof. vm_compute. reflexivity. Qed.

(** Data can be read from the wrong blocks: blocks that a failed commit used are free
    again after a crash, a later object of two blocks is stored around them in blocks
    that are not adjacent, and reading it returns other data, without an error. *)
Theorem scattered_object_is_misread :
  let data := replicate (N.to_nat BLOCK_SIZE) 7 ++ [8] in
  match
    s ← formatted (FailingBlockDevice.new (RamDisk.new 100) (FailurePolicy.OnBlocks [2]));
    '(b1, s) ← commit_one 1 [11] s;
    '(b2, s) ← commit_one 2 [22] (s <| BlockStorage.device ::= FailingBlockDevice.set_policy FailurePolicy.Never |>);
    s ← reopen FailurePolicy.Never s;
    '(b3, s) ← commit_one 3 data s;
    Return (b1, b2, b3, bool_decide (fetch 3 s = Some data), drop (N.to_nat BLOCK_SIZE) <$> fetch 3 s)
  with
  | Return r => r = (false, true, true, false, Some [22])
  | _ => False
  end.
Proof. vm_compute. reflexivity. Qed.

(** C40: a failed commit cannot be retried.  When a commit fails, with any error but that the
    transaction was finalized before, its writes are no longer pending, though the transaction
    is as it was, still active, and the running store shows none of them: its committed versions are
    those from before.  Committing the same transaction again reports success and changes nothing.
    (Whether the writes survive is then only a question of what reached the device: the commit
    record may have, and [open] finds it.) *)
Theorem failed_commit_cannot_be_retried `{BlockDevice D} `{StorageJson} tx (s : BlockStorage.t D) e tx' s' :
  BlockStorage.commit (tx, s) = Return (Err e, (tx', s')) → e ≠ TransactionError.AlreadyFinalized →
  tx' = tx ∧ Transaction.is_active tx = true ∧
  is_Some (BlockStorage.pending s !! Transaction.id tx) ∧
  BlockStorage.pending s' = delete (Transaction.id tx) (BlockStorage.pending s) ∧
  BlockStorage.allocations s' = BlockStorage.allocations s ∧
  BlockStorage.latest_versions s' = BlockStorage.latest_versions s ∧
  ∃ tx'', BlockStorage.commit (tx', s') = Return (Ok tt, (tx'', s')).
Proof.
  unfold BlockStorage.commit at 1. destruct (Transaction.is_active tx) eqn:Hact; [|by intros [= <-]].
  simpl. intros ([r s1] & E1 & E2)%bind_Return He.
  destruct r as [u|er]; simpl in E2.
  { unfold Transaction.commit in E2. by rewrite Hact in E2. }
  destruct (BlockStorage.pending s !! Transaction.id tx) as [ws|] eqn:Hp; [|done].
  apply keeps_failed_commit in E1. injection E2 as <- <- <-. injection E1 as Ep Ea El.
  split_and!; try done. unfold BlockStorage.commit, Transaction.commit.
  rewrite Hact, Ep, lookup_delete_eq. simpl. by eexists.
Qed.

(** The second commit on the sample device fails, and its retry succeeds emptily. *)
Lemma failed_commit_cannot_be_retried_witness :
  match '(_, _, s) ← two_commits; BlockStorage.commit (sample_tx 3, write_one 3 [33] s) with
  | Return (Err e, (tx', s')) =>
      tx' = sample_tx 3 ∧ BlockStorage.pending s' !! TransactionId.mk 3 = None ∧
      ∃ tx'', BlockStorage.commit (tx', s') = Return (Ok tt, (tx'', s'))
  | _ => False
  end.
Proof.
  assert (match '(_, _, s) ← two_commits; BlockStorage.commit (sample_tx 3, write_one 3 [33] s) with
          | Return (Err (TransactionError.StorageError _), _) => true | _ => false end = true) as Hr
    by (vm_compute; reflexivity).
  destruct two_commits as [[[b1 b2] s]| |]; [|discriminate Hr..].
  cbn [mbind outcome_bind] in *.
  destruct (BlockStorage.commit (sample_tx 3, write_one 3 [33] s)) as [[[u|e] [tx' s']]| |] eqn:E;
    [discriminate Hr| |discriminate Hr..].
  destruct (failed_commit_cannot_be_retried (sample_tx 3) (write_one 3 [33] s) e tx' s' E)
    as (-> & _ & _ & Hp & _ & _ & Hretry); [by intros ->|].
  split_and!; [done| |exact Hretry]. rewrite Hp. apply lookup_delete_eq.
Defined.
End BlockSpec.
