(* ===== verification/Lifecycle.v ===== *)
(** * Cancellation, deadlines and the service registry

    [lifecycle/src/lib.rs] and [services_registry/src/lib.rs].  A cancellation source and
    its tokens share one mutable cell ([Rc<RefCell<..>>]); the model has the cells in a
    store, and a source or token is the address of its cell. *)

From S2P Require Import Prelude CoreTypes Ipc.
Open Scope string_scope.
Open Scope list_scope.
Open Scope N_scope.

(** ** Cancellation ([lifecycle/src/lib.rs]) *)

Module CancellationReason.
(* lifecycle/src/lib.rs:31-44 CancellationReason *)
Inductive t := UserCancel | Timeout | SupervisorCancel | DependencyFailed | Custom (msg : string).
#[global] Instance eq_dec : EqDecision t.
Proof. solve_decision. Defined.
(* lifecycle/src/lib.rs:46-56 Display for CancellationReason *)
Definition display (r : t) : string :=
  match r with
  | UserCancel => "user cancelled"
  | Timeout => "timeout"
  | SupervisorCancel => "supervisor cancelled"
  | DependencyFailed => "dependency failed"
  | Custom msg => msg
  end.
End CancellationReason.

Module CancellationState.
(* lifecycle/src/lib.rs:58-63 CancellationState *)
Inductive t := Active | Cancelled (reason : CancellationReason.t).
End CancellationState.

(** The cells in use; an address is an index. *)
Notation cells := (list CancellationState.t).

Module SharedCancellationState.
(* lifecycle/src/lib.rs:65-69 SharedCancellationState *)
Record t := mk { state : nat }.
(* lifecycle/src/lib.rs:72-76 SharedCancellationState::new *)
Definition new (h : cells) : t * cells := (mk (length h), h ++ [CancellationState.Active]).
(** A cell that exists: what [state.borrow()] sees. *)
Definition borrow (s : t) (h : cells) : CancellationState.t :=
  default CancellationState.Active (h !! state s).
(* lifecycle/src/lib.rs:78-80 SharedCancellationState::is_cancelled *)
Definition is_cancelled (s : t) (h : cells) : bool :=
  match borrow s h with CancellationState.Cancelled _ => true | _ => false end.
(* lifecycle/src/lib.rs:82-87 SharedCancellationState::reason *)
Definition reason (s : t) (h : cells) : option CancellationReason.t :=
  match borrow s h with
  | CancellationState.Active => None
  | CancellationState.Cancelled reason => Some reason
  end.
(* lifecycle/src/lib.rs:89-91 SharedCancellationState::cancel *)
Definition cancel (s : t) (r : CancellationReason.t) (h : cells) : cells :=
  <[state s := CancellationState.Cancelled r]> h.
End SharedCancellationState.

Module LifecycleError.
(* lifecycle/src/lib.rs:280-286 LifecycleError *)
Inductive t := Cancelled (reason : CancellationReason.t) | Timeout.
(* lifecycle/src/lib.rs:288-297 Display for LifecycleError *)
Definition display (e : t) : string :=
  match e with
  | Cancelled reason => "Operation was cancelled: " +:+ CancellationReason.display reason
  | Timeout => "Operation timed out"
  end.
End LifecycleError.

Module CancellationToken.
(* lifecycle/src/lib.rs:94-116 CancellationToken *)
Record t := mk { shared : SharedCancellationState.t }.
(* lifecycle/src/lib.rs:119-126 CancellationToken::none *)
Definition none (h : cells) : t * cells :=
  let '(s, h) := SharedCancellationState.new h in (mk s, h).
(* lifecycle/src/lib.rs:128-131 CancellationToken::is_cancelled *)
Definition is_cancelled (t : t) (h : cells) : bool :=
  SharedCancellationState.is_cancelled (shared t) h.
(* lifecycle/src/lib.rs:133-136 CancellationToken::reason *)
Definition reason (t : t) (h : cells) : option CancellationReason.t :=
  SharedCancellationState.reason (shared t) h.
(* lifecycle/src/lib.rs:138-145 CancellationToken::throw_if_cancelled *)
Definition throw_if_cancelled (t : t) (h : cells) : result unit LifecycleError.t :=
  match reason t h with
  | Some r => Err (LifecycleError.Cancelled r)
  | None => Ok tt
  end.
End CancellationToken.

Module CancellationSource.
(* lifecycle/src/lib.rs:148-169 CancellationSource *)
Record t := mk { shared : SharedCancellationState.t }.
(* lifecycle/src/lib.rs:172-177 CancellationSource::new *)
Definition new (h : cells) : t * cells :=
  let '(s, h) := SharedCancellationState.new h in (mk s, h).
(* lifecycle/src/lib.rs:179-184 CancellationSource::token *)
Definition token (c : t) : CancellationToken.t := CancellationToken.mk (shared c).
(* lifecycle/src/lib.rs:186-189 CancellationSource::cancel *)
Definition cancel (c : t) (r : CancellationReason.t) (h : cells) : cells :=
  SharedCancellationState.cancel (shared c) r h.
(* lifecycle/src/lib.rs:191-194 CancellationSource::is_cancelled *)
Definition is_cancelled (c : t) (h : cells) : bool :=
  SharedCancellationState.is_cancelled (shared c) h.
End CancellationSource.

Module Deadline.
(* lifecycle/src/lib.rs:203-221 Deadline *)
Record t := at_instant { instant : Instant.t }.
(* lifecycle/src/lib.rs:223-226 Deadline::has_passed *)
Definition has_passed (d : t) (now : Instant.t) : bool :=
  Instant.nanos (instant d) <=? Instant.nanos now.
(* lifecycle/src/lib.rs:228-237 Deadline::time_remaining *)
Definition time_remaining (d : t) (now : Instant.t) : option Duration.t :=
  if Instant.nanos now <? Instant.nanos (instant d)
  then Some (Instant.duration_since (instant d) now)
  else None.
End Deadline.

Module Timeout.
(* lifecycle/src/lib.rs:240-253 Timeout *)
Record t := after { duration : Duration.t }.
(* lifecycle/src/lib.rs:255-260 Timeout::from_millis *)
Definition from_millis (millis : N) : outcome t :=
  d ← Duration.from_millis millis; Return (after d).
(* lifecycle/src/lib.rs:262-267 Timeout::from_secs *)
Definition from_secs (secs : N) : outcome t := d ← Duration.from_secs secs; Return (after d).
(* lifecycle/src/lib.rs:274-277 Timeout::to_deadline *)
Definition to_deadline (t : t) (now : Instant.t) : outcome Deadline.t :=
  i ← Instant.add now (duration t); Return (Deadline.at_instant i).
End Timeout.

(** ** The service registry ([services_registry/src/lib.rs]) *)

Module RegistryError.
(* services_registry/src/lib.rs:14-25 RegistryError *)
Inductive t :=
| AlreadyRegistered (id : ServiceId.t)
| NameAlreadyRegistered (name : string)
| NotFound (id : ServiceId.t)
| NameNotFound (name : string).
End RegistryError.

Module ServiceDescriptor.
(* services_registry/src/lib.rs:27-34 ServiceDescriptor *)
Record t := mk {
  id : ServiceId.t;
  name : string;
  channel : ChannelId.t;
  schema_version : SchemaVersion.t
}.
End ServiceDescriptor.

Module ServiceRegistry.
(* services_registry/src/lib.rs:36-48 ServiceRegistry *)
Record t := mk {
  services : gmap ServiceId.t ChannelId.t;
  descriptors : gmap ServiceId.t ServiceDescriptor.t;
  names : gmap string ServiceId.t
}.
#[global] Instance rebuild_t : Rebuild t := λ r, mk (services r) (descriptors r) (names r).
(* services_registry/src/lib.rs:51-58 ServiceRegistry::new *)
Definition new : t := mk ∅ ∅ ∅.
(* services_registry/src/lib.rs:60-71 ServiceRegistry::register *)
Definition register (service_id : ServiceId.t) (channel : ChannelId.t) (r : t)
    : result unit RegistryError.t * t :=
  match services r !! service_id with
  | Some _ => (Err (RegistryError.AlreadyRegistered service_id), r)
  | None => (Ok tt, r <| services ::= <[service_id := channel]> |>)
  end.
(* services_registry/src/lib.rs:73-88 ServiceRegistry::register_descriptor *)
Definition register_descriptor (d : ServiceDescriptor.t) (r : t) : result unit RegistryError.t * t :=
  match services r !! ServiceDescriptor.id d with
  | Some _ => (Err (RegistryError.AlreadyRegistered (ServiceDescriptor.id d)), r)
  | None =>
      match names r !! ServiceDescriptor.name d with
      | Some _ => (Err (RegistryError.NameAlreadyRegistered (ServiceDescriptor.name d)), r)
      | None =>
          let r := r <| services ::= <[ServiceDescriptor.id d := ServiceDescriptor.channel d]> |> in
          let r := r <| names ::= <[ServiceDescriptor.name d := ServiceDescriptor.id d]> |> in
          (Ok tt, r <| descriptors ::= <[ServiceDescriptor.id d := d]> |>)
      end
  end.
(* services_registry/src/lib.rs:90-105 ServiceRegistry::register_named *)
Definition register_named (name : string) (service_id : ServiceId.t) (channel : ChannelId.t)
    (schema_version : SchemaVersion.t) (r : t) : result unit RegistryError.t * t :=
  register_descriptor (ServiceDescriptor.mk service_id name channel schema_version) r.
(* services_registry/src/lib.rs:107-113 ServiceRegistry::lookup *)
Definition lookup (service_id : ServiceId.t) (r : t) : result ChannelId.t RegistryError.t :=
  ok_or (services r !! service_id) (RegistryError.NotFound service_id).
(* services_registry/src/lib.rs:115-123 ServiceRegistry::lookup_by_name *)
Definition lookup_by_name (name : string) (r : t) : result ChannelId.t RegistryError.t :=
  match names r !! name with
  | None => Err (RegistryError.NameNotFound name)
  | Some id => lookup id r
  end.
(* services_registry/src/lib.rs:125-128 ServiceRegistry::descriptor *)
Definition descriptor (service_id : ServiceId.t) (r : t) : option ServiceDescriptor.t :=
  descriptors r !! service_id.
(* services_registry/src/lib.rs:130-133 ServiceRegistry::descriptors *)
Definition all_descriptors `{HashOrder} (r : t) : list ServiceDescriptor.t :=
  hm_values (descriptors r).
(* services_registry/src/lib.rs:135-144 ServiceRegistry::unregister *)
Definition unregister (service_id : ServiceId.t) (r : t) : result unit RegistryError.t * t :=
  match services r !! service_id with
  | None => (Err (RegistryError.NotFound service_id), r)
  | Some _ =>
      let r := r <| services ::= delete service_id |> in
      match descriptors r !! service_id with
      | None => (Ok tt, r)
      | Some d =>
          let r := r <| descriptors ::= delete service_id |> in
          (Ok tt, r <| names ::= delete (ServiceDescriptor.name d) |>)
      end
  end.
(* services_registry/src/lib.rs:146-149 ServiceRegistry::count *)
Definition count (r : t) : N := N.of_nat (size (services r)).
End ServiceRegistry.

(** ** Properties *)

Module LifecycleSpec.
(** Cancelling through a source is seen by every token of that source, at once, and by
    no token of another; a later cancellation replaces the reason and nothing undoes it. *)
Lemma cancel_visible src src' r (h : cells) :
  (SharedCancellationState.state (CancellationSource.shared src) < length h)%nat →
  CancellationToken.reason (CancellationSource.token src') (CancellationSource.cancel src r h)
  = if decide (SharedCancellationState.state (CancellationSource.shared src)
               = SharedCancellationState.state (CancellationSource.shared src'))
    then Some r
    else CancellationToken.reason (CancellationSource.token src') h.
Proof.
  intros Hl. unfold CancellationToken.reason, SharedCancellationState.reason,
    SharedCancellationState.borrow, CancellationSource.cancel, SharedCancellationState.cancel,
    CancellationSource.token. simpl.
  destruct (decide _) as [<-|Hne].
  - by rewrite list_lookup_insert_eq.
  - by rewrite list_lookup_insert_ne.
Qed.

(** The calls on a registry. *)
Inductive registry_op :=
| Register (id : ServiceId.t) (c : ChannelId.t)
| RegisterDescriptor (d : ServiceDescriptor.t)
| Unregister (id : ServiceId.t).
Definition registry_exec (r : ServiceRegistry.t) (o : registry_op) : ServiceRegistry.t :=
  match o with
  | Register id c => (ServiceRegistry.register id c r).2
  | RegisterDescriptor d => (ServiceRegistry.register_descriptor d r).2
  | Unregister id => (ServiceRegistry.unregister id r).2
  end.

(** The three tables agree: a descriptor is filed under its own identifier, its channel is
    the service's and its name leads to it; every name leads to a descriptor. *)
Record registry_wf (r : ServiceRegistry.t) : Prop := {
  wf_descriptor id d : ServiceRegistry.descriptors r !! id = Some d →
    ServiceDescriptor.id d = id ∧
    ServiceRegistry.services r !! id = Some (ServiceDescriptor.channel d) ∧
    ServiceRegistry.names r !! ServiceDescriptor.name d = Some id;
  wf_name n id : ServiceRegistry.names r !! n = Some id →
    ∃ d, ServiceRegistry.descriptors r !! id = Some d ∧ ServiceDescriptor.name d = n
}.

Lemma registry_wf_exec r o : registry_wf r → registry_wf (registry_exec r o).
Proof.
  intros [W1 W2]. destruct o as [id c|d|id]; simpl.
  - unfold ServiceRegistry.register. destruct (_ !! id) eqn:Es; [done|].
    constructor; simpl; [|done]. intros id' d Hd. destruct (W1 id' d Hd) as (? & ? & ?).
    split_and!; try done. rewrite lookup_insert_ne; [done|congruence].
  - unfold ServiceRegistry.register_descriptor.
    destruct (_ !! ServiceDescriptor.id d) eqn:Es; [done|].
    destruct (_ !! ServiceDescriptor.name d) eqn:En; [done|]. constructor; simpl.
    + intros id' d' [[<- <-]|[Hne Hd']]%lookup_insert_Some.
      { by rewrite !lookup_insert_eq. }
      destruct (W1 id' d' Hd') as (? & ? & ?). split_and!; [done| |];
        rewrite lookup_insert_ne; try done; congruence.
    + intros n id' [[<- <-]|[Hne Hn]]%lookup_insert_Some.
      { exists d. by rewrite lookup_insert_eq. }
      destruct (W2 n id' Hn) as (d' & Hd' & <-). exists d'. split; [|done].
      rewrite lookup_insert_ne; [done|]. intros <-.
      destruct (W1 _ _ Hd') as (_ & ? & _). congruence.
  - unfold ServiceRegistry.unregister. destruct (_ !! id) eqn:Es; [|done]. simpl.
    destruct (ServiceRegistry.descriptors r !! id) as [d|] eqn:Ed; constructor; simpl.
    + intros id' d' [Hne Hd']%lookup_delete_Some. destruct (W1 id' d' Hd') as (? & ? & Hn).
      destruct (W1 id d Ed) as (_ & _ & Hn0).
      split_and!; [done|by rewrite lookup_delete_ne|].
      rewrite lookup_delete_ne; [done|]. congruence.
    + intros n id' [Hne Hn]%lookup_delete_Some. destruct (W2 n id' Hn) as (d' & Hd' & <-).
      exists d'. rewrite lookup_delete_ne; [done|congruence].
    + intros id' d' Hd'. destruct (W1 id' d' Hd') as (? & ? & ?). split_and!; try done.
      rewrite lookup_delete_ne; [done|]. congruence.
    + done.
Qed.

Lemma registry_wf_new : registry_wf ServiceRegistry.new.
Proof. constructor; intros ? ? Hl; simpl in Hl; by rewrite lookup_empty in Hl. Qed.

(** The registry stays consistent over every sequence of registrations and
    removals: looking a name up gives the channel of the one service registered under it
    and never a dangling identifier, and a name is found exactly while a descriptor with
    that name is filed. *)
Theorem registry_names_are_consistent (ops : list registry_op) :
  let r := foldl registry_exec ServiceRegistry.new ops in
  ∀ n, match ServiceRegistry.lookup_by_name n r with
       | Ok c => ∃ d, ServiceRegistry.descriptor (ServiceDescriptor.id d) r = Some d ∧
                      ServiceDescriptor.name d = n ∧ ServiceDescriptor.channel d = c ∧
                      ServiceRegistry.lookup (ServiceDescriptor.id d) r = Ok c
       | Err e => e = RegistryError.NameNotFound n ∧
                  ∀ d, ServiceRegistry.descriptor (ServiceDescriptor.id d) r = Some d →
                       ServiceDescriptor.name d ≠ n
       end.
Proof.
  intros r n. assert (registry_wf r) as [W1 W2].
  { apply foldl_ind; [apply registry_wf_new|]. intros. by apply registry_wf_exec. }
  unfold ServiceRegistry.lookup_by_name, ServiceRegistry.lookup, ServiceRegistry.descriptor.
  destruct (ServiceRegistry.names r !! n) as [id|] eqn:En.
  - destruct (W2 n id En) as (d & Hd & <-). destruct (W1 id d Hd) as (<- & Hs & _).
    rewrite Hs. simpl. exists d. by rewrite Hs.
  - split; [done|]. intros d Hd <-. destruct (W1 _ _ Hd) as (_ & _ & Hn). congruence.
Qed.
End LifecycleSpec.
