(* ===== verification/Pipeline.v ===== *)
(** * Pipelines and their executor

    [pipeline/src/lib.rs] and [services_pipeline_executor/src/lib.rs].  A pipeline is a
    list of stages, each served by a service over the kernel's messages; the executor
    runs them in order with retries, capability checks, policy decisions, timeouts and
    cancellation.  It is written against the class [KernelApi]. *)

From Stdlib Require Import SpecFloat.
From S2P Require Import Prelude CoreTypes Debug Resources Identity Ipc Policy SyscallGate Lifecycle.
Open Scope string_scope.
Open Scope list_scope.
Open Scope N_scope.

(** ** Double-precision numbers

    [f64] is IEEE 754 binary64, as [SpecFloat] computes it. *)
Module F64.
Notation t := spec_float.
Definition mul : t → t → t := SFmul 53 1024.
(** [n as f64]: round to nearest, ties to even. *)
Definition of_N (n : N) : t := binary_normalize 53 1024 (Z.of_N n) 0 false.
(** [x as u64]: truncation towards zero, saturating; NaN is 0. *)
Definition to_u64 (x : t) : N :=
  match x with
  | S754_finite false m e =>
      let n := Z.to_N (if (0 <=? e)%Z then Z.pos m * 2 ^ e else Z.pos m / 2 ^ (- e)) in
      N.min n u64_max
  | S754_infinity false => u64_max
  | _ => 0
  end.
Definition one : t := of_N 1.
Definition two : t := of_N 2.
End F64.

(** ** Payloads and stages ([pipeline/src/lib.rs]) *)

Module PayloadSchemaId.
(* pipeline/src/lib.rs:70-87 PayloadSchemaId *)
Record t := new { as_str : string }.
#[global] Instance eq_dec : EqDecision t.
Proof. solve_decision. Defined.
Definition debug (s : t) : string := Debug.tuple1 "PayloadSchemaId" (Debug.str (as_str s)).
End PayloadSchemaId.

Module PayloadSchemaVersion.
(* pipeline/src/lib.rs:89-101 PayloadSchemaVersion *)
Record t := new { major : N; minor : N }.
End PayloadSchemaVersion.

Module TypedPayload.
(* pipeline/src/lib.rs:103-127 TypedPayload *)
Record t := new {
  schema_id : PayloadSchemaId.t;
  schema_version : PayloadSchemaVersion.t;
  data : list N
}.
End TypedPayload.

Module StageResult.
(* pipeline/src/lib.rs:129-143 StageResult *)
Inductive t :=
| Success (output : TypedPayload.t) (capabilities : list N)
| Failure (error : string)
| Retryable (error : string)
| Cancelled (reason : string).
End StageResult.

Module RetryPolicy.
(* pipeline/src/lib.rs:145-154 RetryPolicy *)
Record t := mk {
  max_retries : N;
  initial_backoff_ms : N;
  backoff_multiplier : F64.t
}.
(* pipeline/src/lib.rs:157-164 RetryPolicy::none *)
Definition none : t := mk 0 0 F64.one.
(* pipeline/src/lib.rs:166-173 RetryPolicy::fixed_retries *)
Definition fixed_retries (max_retries backoff_ms : N) : t := mk max_retries backoff_ms F64.one.
(* pipeline/src/lib.rs:175-182 RetryPolicy::exponential_backoff *)
Definition exponential_backoff (max_retries initial_backoff_ms : N) : t :=
  mk max_retries initial_backoff_ms F64.two.
(* pipeline/src/lib.rs:184-198 RetryPolicy::backoff_duration *)
Definition backoff_duration (attempt : N) (p : t) : N :=
  if attempt =? 0 then 0
  else
    let multiplier :=
      N.iter (attempt - 1) (λ m, F64.mul m (backoff_multiplier p)) F64.one in
    F64.to_u64 (F64.mul (F64.of_N (initial_backoff_ms p)) multiplier).
End RetryPolicy.

Module StageSpec.
(* pipeline/src/lib.rs:207-228 StageSpec *)
Record t := mk {
  id : StageId.t;
  name : string;
  handler : ServiceId.t;
  action : string;
  input_schema : PayloadSchemaId.t;
  output_schema : PayloadSchemaId.t;
  retry_policy : RetryPolicy.t;
  required_capabilities : list N;
  timeout_ms : option N
}.
#[global] Instance rebuild_t : Rebuild t := λ s,
  mk (id s) (name s) (handler s) (action s) (input_schema s) (output_schema s) (retry_policy s)
     (required_capabilities s) (timeout_ms s).
(* pipeline/src/lib.rs:231-250 StageSpec::new *)
Definition new (id : StageId.t) (name : string) (handler : ServiceId.t) (action : string)
    (input_schema output_schema : PayloadSchemaId.t) : t :=
  mk id name handler action input_schema output_schema RetryPolicy.none [] None.
(* pipeline/src/lib.rs:252-256 StageSpec::with_retry_policy *)
Definition with_retry_policy (p : RetryPolicy.t) (s : t) : t := s <| retry_policy := p |>.
(* pipeline/src/lib.rs:258-262 StageSpec::with_capabilities *)
Definition with_capabilities (caps : list N) (s : t) : t := s <| required_capabilities := caps |>.
(* pipeline/src/lib.rs:264-268 StageSpec::with_timeout_ms *)
Definition with_timeout_ms (ms : N) (s : t) : t := s <| timeout_ms := Some ms |>.
End StageSpec.

Module PipelineError.
(* pipeline/src/lib.rs:365-381 PipelineError *)
Inductive t :=
| EmptyPipeline
| SchemaMismatch (stage_name : string) (expected actual : PayloadSchemaId.t)
| StageExecutionFailed (err : string)
| MissingCapability (cap : N)
| InvalidSchema (schema : string).
(* pipeline/src/lib.rs:383-407 Display for PipelineError *)
Definition display (e : t) : string :=
  match e with
  | EmptyPipeline => "Pipeline has no stages"
  | SchemaMismatch stage_name expected actual =>
      "Schema mismatch in stage '" +:+ stage_name +:+ "': expected "
      +:+ PayloadSchemaId.debug expected +:+ ", got " +:+ PayloadSchemaId.debug actual
  | StageExecutionFailed err => "Stage execution failed: " +:+ err
  | MissingCapability cap => "Missing required capability: " +:+ pretty cap
  | InvalidSchema schema => "Invalid payload schema: " +:+ schema
  end.
End PipelineError.

Module PipelineSpec.
(* pipeline/src/lib.rs:271-286 PipelineSpec *)
Record t := mk {
  id : PipelineId.t;
  name : string;
  stages : list StageSpec.t;
  initial_input_schema : PayloadSchemaId.t;
  final_output_schema : PayloadSchemaId.t;
  timeout_ms : option N
}.
#[global] Instance rebuild_t : Rebuild t := λ s,
  mk (id s) (name s) (stages s) (initial_input_schema s) (final_output_schema s) (timeout_ms s).
(* pipeline/src/lib.rs:289-303 PipelineSpec::new *)
Definition new (id : PipelineId.t) (name : string)
    (initial_input_schema final_output_schema : PayloadSchemaId.t) : t :=
  mk id name [] initial_input_schema final_output_schema None.
(* pipeline/src/lib.rs:305-309 PipelineSpec::add_stage *)
Definition add_stage (stage : StageSpec.t) (s : t) : t := s <| stages ::= λ l, l ++ [stage] |>.
(* pipeline/src/lib.rs:311-315 PipelineSpec::with_timeout_ms *)
Definition with_timeout_ms (ms : N) (s : t) : t := s <| timeout_ms := Some ms |>.

(** The loop over neighbouring stages. *)
(* pipeline/src/lib.rs:338-349 PipelineSpec::validate *)
Fixpoint check_links (stages : list StageSpec.t) : result unit PipelineError.t :=
  match stages with
  | current :: (next :: _) as rest =>
      if bool_decide (StageSpec.output_schema current = StageSpec.input_schema next)
      then check_links rest
      else Err (PipelineError.SchemaMismatch (StageSpec.name next)
                  (StageSpec.output_schema current) (StageSpec.input_schema next))
  | _ => Ok tt
  end.
(* pipeline/src/lib.rs:317-362 PipelineSpec::validate *)
Definition validate (s : t) : result unit PipelineError.t :=
  match stages s, last (stages s) with
  | first :: _, Some last_stage =>
      if negb (bool_decide (StageSpec.input_schema first = initial_input_schema s))
      then Err (PipelineError.SchemaMismatch (StageSpec.name first) (initial_input_schema s)
                  (StageSpec.input_schema first))
      else
        match check_links (stages s) with
        | Err e => Err e
        | Ok _ =>
            if negb (bool_decide (StageSpec.output_schema last_stage = final_output_schema s))
            then Err (PipelineError.SchemaMismatch (StageSpec.name last_stage)
                        (final_output_schema s) (StageSpec.output_schema last_stage))
            else Ok tt
        end
  | _, _ => Err PipelineError.EmptyPipeline
  end.
End PipelineSpec.

(** ** Traces *)

Module StageExecutionResult.
(* pipeline/src/lib.rs:432-439 StageExecutionResult *)
Inductive t := Success | Failure (error : string) | Retrying (error : string) | Cancelled (reason : string).
End StageExecutionResult.

Module StageTraceEntry.
(* pipeline/src/lib.rs:411-430 StageTraceEntry *)
Record t := mk {
  stage_id : StageId.t;
  stage_name : string;
  start_time_ms : N;
  end_time_ms : N;
  attempt : N;
  result : StageExecutionResult.t;
  capabilities_in : list N;
  capabilities_out : list N
}.
End StageTraceEntry.

Module PipelineExecutionResult.
(* pipeline/src/lib.rs:481-488 PipelineExecutionResult *)
Inductive t :=
| InProgress
| Success
| Failed (stage_name error : string)
| Cancelled (stage_name reason : string).
End PipelineExecutionResult.

Module ExecutionTrace.
(* pipeline/src/lib.rs:441-450 ExecutionTrace *)
Record t := mk {
  pipeline_id : PipelineId.t;
  entries : list StageTraceEntry.t;
  final_result : PipelineExecutionResult.t
}.
#[global] Instance rebuild_t : Rebuild t := λ x, mk (pipeline_id x) (entries x) (final_result x).
(* pipeline/src/lib.rs:453-460 ExecutionTrace::new *)
Definition new (id : PipelineId.t) : t := mk id [] PipelineExecutionResult.InProgress.
(* pipeline/src/lib.rs:462-465 ExecutionTrace::add_entry *)
Definition add_entry (e : StageTraceEntry.t) (x : t) : t := x <| entries ::= λ l, l ++ [e] |>.
(* pipeline/src/lib.rs:467-470 ExecutionTrace::set_final_result *)
Definition set_final_result (r : PipelineExecutionResult.t) (x : t) : t := x <| final_result := r |>.
(* pipeline/src/lib.rs:472-478 ExecutionTrace::entries_for_stage *)
Definition entries_for_stage (id : StageId.t) (x : t) : list StageTraceEntry.t :=
  filter (λ e, StageId.uuid (StageTraceEntry.stage_id e) = StageId.uuid id) (entries x).
End ExecutionTrace.

(** ** The executor ([services_pipeline_executor/src/lib.rs]) *)

Module ExecutorError.
(* services_pipeline_executor/src/lib.rs:34-76 ExecutorError *)
Inductive t :=
| ValidationFailed (e : PipelineError.t)
| KernelError (msg : string)
| HandlerNotFound (msg : string)
| SchemaValidation (expected actual : string)
| Serialization (msg : string)
| PolicyDenied (policy event reason : string) (pipeline_id : option string)
| PolicyRequire (policy event action : string) (pipeline_id : option string)
| PolicyDerivedAuthorityInvalid (policy event reason delta : string) (pipeline_id : option string).
End ExecutorError.

(** The JSON of requests and responses is [serde_json]'s; an error is its text. *)
Class StageCodec := {
  encode_request : TypedPayload.t → result MessagePayload.t string;
  decode_response : MessagePayload.t → result StageResult.t string
}.

(* kernel_api/src/error.rs:57-98 Display for KernelError *)
Definition display_kernel_error (e : KernelError.t) : string :=
  let budget kind r l u i o :=
    "Resource budget " +:+ kind +:+ ": " +:+ r +:+ " limit=" +:+ pretty l +:+ ", usage=" +:+ pretty u
    +:+ ", identity=" +:+ i +:+ ", operation=" +:+ o in
  match e with
  | KernelError.SpawnFailed m => "Failed to spawn task: " +:+ m
  | KernelError.ChannelError m => "Channel error: " +:+ m
  | KernelError.SendFailed m => "Failed to send message: " +:+ m
  | KernelError.ReceiveFailed m => "Failed to receive message: " +:+ m
  | KernelError.Timeout => "Operation timed out"
  | KernelError.ServiceNotFound m => "Service not found: " +:+ m
  | KernelError.ServiceAlreadyRegistered m => "Service already registered: " +:+ m
  | KernelError.InsufficientAuthority m => "Insufficient authority: " +:+ m
  | KernelError.InvalidCapability m => "Invalid capability: " +:+ m
  | KernelError.ResourceExhausted m => "Resource exhausted: " +:+ m
  | KernelError.ResourceBudgetExceeded r l u i o => budget "exceeded" r l u i o
  | KernelError.ResourceBudgetExhausted r l u i o => budget "exhausted" r l u i o
  end.

Module PipelineExecutor.
(* services_pipeline_executor/src/lib.rs:78-86 PipelineExecutor *)
Record t := mk {
  available_capabilities : gmap N bool;
  policy_engine : option PolicyEngine.t;
  identity : option IdentityMetadata.t
}.
#[global] Instance rebuild_t : Rebuild t := λ x,
  mk (available_capabilities x) (policy_engine x) (identity x).
(* services_pipeline_executor/src/lib.rs:101-108 PipelineExecutor::new *)
Definition new : t := mk ∅ None None.
(* services_pipeline_executor/src/lib.rs:110-114 PipelineExecutor::with_policy_engine *)
Definition with_policy_engine (e : PolicyEngine.t) (x : t) : t := x <| policy_engine := Some e |>.
(* services_pipeline_executor/src/lib.rs:116-120 PipelineExecutor::with_identity *)
Definition with_identity (i : IdentityMetadata.t) (x : t) : t := x <| identity := Some i |>.
(* services_pipeline_executor/src/lib.rs:122-127 PipelineExecutor::add_capabilities *)
Definition add_capabilities (cap_ids : list N) (x : t) : t :=
  foldl (λ x c, x <| available_capabilities ::= <[c := true]> |>) x cap_ids.
(* services_pipeline_executor/src/lib.rs:129-135 PipelineExecutor::has_capability *)
Definition has_capability (cap_id : N) (x : t) : bool :=
  default false (available_capabilities x !! cap_id).
(** The order of the map does not matter to the set. *)
(* services_pipeline_executor/src/lib.rs:137-146 PipelineExecutor::get_capability_set *)
Definition get_capability_set (x : t) : CapabilitySet.t :=
  CapabilitySet.from_capabilities
    (omap (λ '(id, present), if present : bool then Some id else None)
       (map_to_list (available_capabilities x))).
(* services_pipeline_executor/src/lib.rs:148-166 PipelineExecutor::has_capability_with_authority *)
Definition has_capability_with_authority (cap_id : N) (authority : option CapabilitySet.t) (x : t)
    : bool :=
  if negb (has_capability cap_id x) then false
  else match authority with
       | Some auth => bool_decide (cap_id ∈ CapabilitySet.capabilities auth)
       | None => true
       end.

Section with_kernel.
Context {K : Type} `{KernelApi K} `{UuidFormat} `{StageCodec}.
(** The UUIDs that [new_uuid] draws, in order; the state counts those drawn. *)
Context (uuids : nat → Uuid).
(** The cell of the cancellation token, shared with its source: whoever the kernel runs
    may cancel it, so it is read from the state of the environment. *)
Context (token : K → option CancellationReason.t).

Notation st := (K * nat)%type.

Definition draw (s : st) : Uuid * st := (uuids s.2, (s.1, S s.2)).
Definition is_cancelled (s : st) : bool := bool_decide (is_Some (token s.1)).
(** [cancellation_token.reason().map(..).unwrap_or_else(|| "unknown")]. *)
Definition reason_text (s : st) : string :=
  match token s.1 with Some r => CancellationReason.display r | None => "unknown" end.

(** A kernel call that may fail, with its error text. *)
Definition kernel_call {A} (prefix : string) (m : outcome (result A KernelError.t * K)) (n : nat)
    : outcome (result A ExecutorError.t * st) :=
  '(r, k) ← m;
  Return (map_err (λ e, ExecutorError.KernelError (prefix +:+ display_kernel_error e)) r, (k, n)).

(* services_pipeline_executor/src/lib.rs:577-642 PipelineExecutor::execute_stage_once *)
Definition execute_stage_once (stage : StageSpec.t) (input : TypedPayload.t) (s : st)
    : outcome (result StageResult.t ExecutorError.t * st) :=
  let handler := ServiceId.display (StageSpec.handler stage) in
  match api_lookup_service (StageSpec.handler stage) s.1 with
  | Err (KernelError.ServiceNotFound _) => Return (Err (ExecutorError.HandlerNotFound handler), s)
  | Err err =>
      Return (Err (ExecutorError.KernelError ("Failed to lookup stage handler " +:+ handler +:+ ": "
                                              +:+ display_kernel_error err)), s)
  | Ok channel =>
      match encode_request input with
      | Err e => Return (Err (ExecutorError.Serialization ("Failed to serialize request: " +:+ e)), s)
      | Ok message_payload =>
          let schema_version :=
            SchemaVersion.new (PayloadSchemaVersion.major (TypedPayload.schema_version input))
                              (PayloadSchemaVersion.minor (TypedPayload.schema_version input)) in
          let '(u, (k, n)) := draw s in
          let request_id := MessageId.mk u in
          let request := MessageEnvelope.new request_id (StageSpec.handler stage)
                           (StageSpec.action stage) schema_version message_payload in
          try! _, s := kernel_call "Failed to send stage request: "
                         (api_send_message channel request k) n in
          timeout ← match StageSpec.timeout_ms stage with
                    | Some ms => d ← Duration.from_millis ms; Return (Some d)
                    | None => Return None
                    end;
          try! response, s := kernel_call "Failed to receive stage response: "
                                (api_receive_message channel timeout s.1) s.2 in
          if negb (bool_decide (MessageEnvelope.correlation_id response = Some request_id))
          then Return (Err (ExecutorError.KernelError
                 ("Stage response correlation mismatch: expected " +:+ MessageId.display request_id
                  +:+ ", got " +:+ Debug.option
                        (λ i, Debug.tuple1 "MessageId" (uuid_debug (MessageId.uuid i)))
                        (MessageEnvelope.correlation_id response))), s)
          else
            match decode_response (MessageEnvelope.payload response) with
            | Err e => Return (Err (ExecutorError.Serialization
                                      ("Failed to deserialize stage response: " +:+ e)), s)
            | Ok r => Return (Ok r, s)
            end
      end
  end.

(** A timeout as a deadline from now. *)
Definition deadline_after (timeout_ms : option N) (k : K) : outcome (option Deadline.t) :=
  match timeout_ms with
  | None => Return None
  | Some ms =>
      d ← Duration.from_millis ms;
      i ← Instant.add (api_now k) d;
      Return (Some (Deadline.at_instant i))
  end.
Definition deadline_passed (d : option Deadline.t) (k : K) : bool :=
  match d with Some d => Deadline.has_passed d (api_now k) | None => false end.

(** The entry recorded for one attempt. *)
(* services_pipeline_executor/src/lib.rs:514-543 PipelineExecutor::execute_stage_with_retry *)
Definition trace_entry (stage : StageSpec.t) (start_ms end_ms attempt : N) (r : StageResult.t)
    : StageTraceEntry.t :=
  let caps_out := match r with StageResult.Success _ caps => caps | _ => [] end in
  let trace_result :=
    match r with
    | StageResult.Success _ _ => StageExecutionResult.Success
    | StageResult.Failure error => StageExecutionResult.Failure error
    | StageResult.Retryable error => StageExecutionResult.Retrying error
    | StageResult.Cancelled reason => StageExecutionResult.Cancelled reason
    end in
  StageTraceEntry.mk (StageSpec.id stage) (StageSpec.name stage) start_ms end_ms attempt
    trace_result (StageSpec.required_capabilities stage) caps_out.

(** The loop, at most [fuel] times; every turn but the last raises [attempt], which stays
    at most [max_retries]. *)
(* services_pipeline_executor/src/lib.rs:486-574 PipelineExecutor::execute_stage_with_retry *)
Fixpoint retry_loop (fuel : nat) (stage : StageSpec.t) (input : TypedPayload.t)
    (stage_deadline : option Deadline.t) (attempt : N) (trace : ExecutionTrace.t) (s : st)
    : outcome (result StageResult.t ExecutorError.t * (ExecutionTrace.t * st)) :=
  match fuel with
  | O => Diverge
  | S fuel =>
      if is_cancelled s
      then Return (Ok (StageResult.Cancelled (reason_text s)), (trace, s))
      else if deadline_passed stage_deadline s.1
      then Return (Ok (StageResult.Cancelled "stage timeout"), (trace, s))
      else
        let start_ms := Instant.as_nanos (api_now s.1) / 1000000 in
        '(r, s) ← execute_stage_once stage input s;
        match r with
        | Err e => Return (Err e, (trace, s))
        | Ok r =>
            let end_ms := Instant.as_nanos (api_now s.1) / 1000000 in
            let trace := ExecutionTrace.add_entry (trace_entry stage start_ms end_ms attempt r) trace in
            match r with
            | StageResult.Retryable error =>
                let max_retries := RetryPolicy.max_retries (StageSpec.retry_policy stage) in
                if max_retries <=? attempt
                then Return (Ok (StageResult.Failure ("Max retries (" +:+ pretty max_retries
                                   +:+ ") exceeded: " +:+ error)), (trace, s))
                else
                  let attempt := attempt + 1 in
                  let backoff := RetryPolicy.backoff_duration attempt (StageSpec.retry_policy stage) in
                  if 0 <? backoff
                  then
                    d ← Duration.from_millis backoff;
                    '(_, k) ← api_sleep d s.1;
                    retry_loop fuel stage input stage_deadline attempt trace (k, s.2)
                  else retry_loop fuel stage input stage_deadline attempt trace s
            | _ => Return (Ok r, (trace, s))
            end
        end
  end.
(* services_pipeline_executor/src/lib.rs:469-575 PipelineExecutor::execute_stage_with_retry *)
Definition execute_stage_with_retry (stage : StageSpec.t) (input : TypedPayload.t)
    (trace : ExecutionTrace.t) (s : st)
    : outcome (result StageResult.t ExecutorError.t * (ExecutionTrace.t * st)) :=
  stage_deadline ← deadline_after (StageSpec.timeout_ms stage) s.1;
  retry_loop (S (N.to_nat (RetryPolicy.max_retries (StageSpec.retry_policy stage))))
    stage input stage_deadline 0 trace s.

(** The identity in the policy context: the executor's, or a new one. *)
(* services_pipeline_executor/src/lib.rs:650-658 PipelineExecutor::build_pipeline_context *)
Definition actor_identity (x : t) (s : st) : IdentityMetadata.t * st :=
  match identity x with
  | Some i => (i, s)
  | None =>
      let '(u, s') := draw s in
      (IdentityMetadata.new (ExecutionId.mk u) IdentityKind.Service TrustDomain.core
         "pipeline-executor" (Instant.as_nanos (api_now s.1)), s')
  end.
(* services_pipeline_executor/src/lib.rs:644-669 PipelineExecutor::build_pipeline_context *)
Definition build_pipeline_context (x : t) (spec : PipelineSpec.t) (s : st) : PolicyContext.t * st :=
  let '(actor, s) := actor_identity x s in
  let context := PolicyContext.for_pipeline actor (PipelineSpec.id spec) in
  let context :=
    match PipelineSpec.timeout_ms spec with
    | Some ms => PolicyContext.with_metadata "timeout_ms" (pretty ms) context
    | None => context
    end in
  (PolicyContext.with_metadata "stage_count" (pretty (len (PipelineSpec.stages spec))) context, s).
(* services_pipeline_executor/src/lib.rs:671-702 PipelineExecutor::build_stage_context *)
Definition build_stage_context (x : t) (spec : PipelineSpec.t) (stage : StageSpec.t) (s : st)
    : PolicyContext.t * st :=
  let '(actor, s) := actor_identity x s in
  let context := (PolicyContext.for_pipeline actor (PipelineSpec.id spec))
                   <| PolicyContext.stage_id := Some (StageSpec.id stage) |> in
  let context :=
    match StageSpec.timeout_ms stage with
    | Some ms => PolicyContext.with_metadata "stage_timeout_ms" (pretty ms) context
    | None => context
    end in
  let context := PolicyContext.with_metadata "retry_max"
    (pretty (RetryPolicy.max_retries (StageSpec.retry_policy stage))) context in
  (PolicyContext.with_metadata "required_capabilities"
     (Debug.vec Debug.number (StageSpec.required_capabilities stage)) context, s).

(** What a policy decision means for the authority in force: an error, or the authority
    to go on with.  [current] is what a derived authority is compared to. *)
(* services_pipeline_executor/src/lib.rs:224-268 PipelineExecutor::execute *)
Definition apply_decision (policy : PolicyEngine.t) (event : string) (spec : PipelineSpec.t)
    (authority : option CapabilitySet.t) (current : CapabilitySet.t) (d : PolicyDecision.t)
    : result (option CapabilitySet.t) ExecutorError.t :=
  let pid := Some (uuid_to_string (PipelineId.uuid (PipelineSpec.id spec))) in
  match d with
  | PolicyDecision.Deny reason =>
      Err (ExecutorError.PolicyDenied (PolicyEngine.name policy) event reason pid)
  | PolicyDecision.Require action =>
      Err (ExecutorError.PolicyRequire (PolicyEngine.name policy) event action pid)
  | PolicyDecision.Allow None => Ok authority
  | PolicyDecision.Allow (Some derived) =>
      let caps := DerivedAuthority.capabilities derived in
      if negb (CapabilitySet.is_subset_of caps current)
      then
        let delta := CapabilityDelta.from current caps in
        Err (ExecutorError.PolicyDerivedAuthorityInvalid (PolicyEngine.name policy) event
               "Derived authority grants more capabilities than available"
               ("removed: " +:+ Debug.vec Debug.number (CapabilityDelta.removed delta)
                +:+ ", added: " +:+ Debug.vec Debug.number (CapabilityDelta.added delta)) pid)
      else Ok (Some caps)
  end.

(** Asking the policy engine at the start of a stage. *)
(* services_pipeline_executor/src/lib.rs:311-381 PipelineExecutor::execute *)
Definition stage_authority (x : t) (spec : PipelineSpec.t) (stage : StageSpec.t)
    (execution_authority : option CapabilitySet.t) (s : st)
    : result (option CapabilitySet.t) ExecutorError.t * st :=
  match policy_engine x with
  | None => (Ok execution_authority, s)
  | Some policy =>
      let '(context, s) := build_stage_context x spec stage s in
      (apply_decision policy "OnPipelineStageStart" spec execution_authority
         (default (get_capability_set x) execution_authority)
         (PolicyEngine.evaluate policy PolicyEvent.OnPipelineStageStart context), s)
  end.
(** The first required capability that is missing. *)
(* services_pipeline_executor/src/lib.rs:383-395 PipelineExecutor::execute *)
Definition missing_capability (x : t) (stage : StageSpec.t) (authority : option CapabilitySet.t)
    : option N :=
  head (filter (λ c, has_capability_with_authority c authority x = false)
          (StageSpec.required_capabilities stage)).

(** One stage of [execute]: the new executor, trace and input, or the error.  The trace
    of a failed run is dropped with it, so its final result is not kept here. *)
(* services_pipeline_executor/src/lib.rs:280-455 PipelineExecutor::execute *)
Definition run_stage (spec : PipelineSpec.t) (pipeline_deadline : option Deadline.t)
    (execution_authority : option CapabilitySet.t) (stage : StageSpec.t)
    (x : t) (trace : ExecutionTrace.t) (input : TypedPayload.t) (s : st)
    : outcome (result (ExecutionTrace.t * TypedPayload.t) ExecutorError.t * (t * st)) :=
  if is_cancelled s
  then Return (Err (ExecutorError.KernelError ("Pipeline cancelled at stage "
                      +:+ StageSpec.name stage +:+ ": " +:+ reason_text s)), (x, s))
  else if deadline_passed pipeline_deadline s.1
  then Return (Err (ExecutorError.KernelError ("Pipeline timed out at stage "
                      +:+ StageSpec.name stage)), (x, s))
  else
    let '(r, s) := stage_authority x spec stage execution_authority s in
    match r with
    | Err e => Return (Err e, (x, s))
    | Ok authority =>
        match missing_capability x stage authority with
        | Some cap_id =>
            Return (Err (ExecutorError.KernelError ("Missing required capability: "
                           +:+ pretty cap_id)), (x, s))
        | None =>
            '(r, (trace, s)) ← execute_stage_with_retry stage input trace s;
            match r with
            | Err e => Return (Err e, (x, s))
            | Ok stage_result =>
                let s := match policy_engine x with
                         | Some _ => (build_stage_context x spec stage s).2
                         | None => s
                         end in
                match stage_result with
                | StageResult.Success output capabilities =>
                    Return (Ok (trace, output), (add_capabilities capabilities x, s))
                | StageResult.Failure error =>
                    Return (Err (ExecutorError.KernelError error), (x, s))
                | StageResult.Retryable error =>
                    Return (Err (ExecutorError.KernelError
                                   ("Retryable error not handled: " +:+ error)), (x, s))
                | StageResult.Cancelled reason =>
                    Return (Err (ExecutorError.KernelError ("Stage cancelled: " +:+ reason)), (x, s))
                end
            end
        end
    end.
(* services_pipeline_executor/src/lib.rs:279-456 PipelineExecutor::execute *)
Fixpoint run_stages (spec : PipelineSpec.t) (pipeline_deadline : option Deadline.t)
    (execution_authority : option CapabilitySet.t) (stages : list StageSpec.t)
    (x : t) (trace : ExecutionTrace.t) (input : TypedPayload.t) (s : st)
    : outcome (result (ExecutionTrace.t * TypedPayload.t) ExecutorError.t * (t * st)) :=
  match stages with
  | [] => Return (Ok (trace, input), (x, s))
  | stage :: stages =>
      '(r, (x, s)) ← run_stage spec pipeline_deadline execution_authority stage x trace input s;
      match r with
      | Err e => Return (Err e, (x, s))
      | Ok (trace, output) =>
          run_stages spec pipeline_deadline execution_authority stages x trace output s
      end
  end.

(** Asking the policy engine at the start of the pipeline. *)
(* services_pipeline_executor/src/lib.rs:216-269 PipelineExecutor::execute *)
Definition execution_authority (x : t) (spec : PipelineSpec.t) (s : st)
    : result (option CapabilitySet.t) ExecutorError.t * st :=
  match policy_engine x with
  | None => (Ok None, s)
  | Some policy =>
      let '(context, s) := build_pipeline_context x spec s in
      (apply_decision policy "OnPipelineStart" spec None (get_capability_set x)
         (PolicyEngine.evaluate policy PolicyEvent.OnPipelineStart context), s)
  end.
(* services_pipeline_executor/src/lib.rs:168-467 PipelineExecutor::execute *)
Definition execute (spec : PipelineSpec.t) (initial_input : TypedPayload.t) (x : t) (s : st)
    : outcome (result (TypedPayload.t * ExecutionTrace.t) ExecutorError.t * (t * st)) :=
  match PipelineSpec.validate spec with
  | Err e => Return (Err (ExecutorError.ValidationFailed e), (x, s))
  | Ok _ =>
      if is_cancelled s
      then Return (Err (ExecutorError.KernelError "Pipeline cancelled before start"), (x, s))
      else if negb (bool_decide (TypedPayload.schema_id initial_input
                                 = PipelineSpec.initial_input_schema spec))
      then Return (Err (ExecutorError.SchemaValidation
                     (PayloadSchemaId.as_str (PipelineSpec.initial_input_schema spec))
                     (PayloadSchemaId.as_str (TypedPayload.schema_id initial_input))), (x, s))
      else
        let '(r, s) := execution_authority x spec s in
        match r with
        | Err e => Return (Err e, (x, s))
        | Ok authority =>
            pipeline_deadline ← deadline_after (PipelineSpec.timeout_ms spec) s.1;
            '(r, (x, s)) ← run_stages spec pipeline_deadline authority (PipelineSpec.stages spec) x
                             (ExecutionTrace.new (PipelineSpec.id spec)) initial_input s;
            match r with
            | Err e => Return (Err e, (x, s))
            | Ok (trace, output) =>
                if negb (bool_decide (TypedPayload.schema_id output
                                      = PipelineSpec.final_output_schema spec))
                then Return (Err (ExecutorError.SchemaValidation
                               (PayloadSchemaId.as_str (PipelineSpec.final_output_schema spec))
                               (PayloadSchemaId.as_str (TypedPayload.schema_id output))), (x, s))
                else Return (Ok (output, ExecutionTrace.set_final_result
                                   PipelineExecutionResult.Success trace), (x, s))
            end
        end
  end.
End with_kernel.
End PipelineExecutor.
