(* ===== verification/PipelineProps.v ===== *)
(** * What the pipeline executor promises

    Typing of pipelines, bounded retries and termination, authority, and the meaning of a
    successful run; for every kernel behind [KernelApi]. *)

From S2P Require Import Prelude CoreTypes Debug Resources Identity Ipc Policy SyscallGate Lifecycle Pipeline.
Open Scope string_scope.
Open Scope list_scope.
Open Scope N_scope.

Module PipelineSafety.
Import PipelineExecutor.

(** ** Typing *)

(** A list of stages takes payloads of schema [a] to payloads of schema [b]. *)
Inductive stages_typed : PayloadSchemaId.t → list StageSpec.t → PayloadSchemaId.t → Prop :=
| typed_nil a : stages_typed a [] a
| typed_cons a stage stages b :
    StageSpec.input_schema stage = a → stages_typed (StageSpec.output_schema stage) stages b →
    stages_typed a (stage :: stages) b.

Lemma check_links_typed first stages b l :
  last (first :: stages) = Some l →
  PipelineSpec.check_links (first :: stages) = Ok tt ∧ StageSpec.output_schema l = b ↔
  stages_typed (StageSpec.input_schema first) (first :: stages) b.
Proof.
  revert first l. induction stages as [|next stages IH]; intros first l Hl.
  - injection Hl as <-. split.
    + intros [_ <-]. by repeat constructor.
    + intros Ht. inversion Ht as [|? ? ? ? _ Ht']; subst. by inversion Ht'.
  - cbn [PipelineSpec.check_links]. rewrite last_cons_cons in Hl.
    specialize (IH next l Hl). case_bool_decide as Hlink.
    + rewrite IH. split.
      * intros Ht. constructor; [done|]. by rewrite Hlink.
      * intros Ht. inversion Ht as [|? ? ? ? _ Ht']; subst. by rewrite <- Hlink.
    + split; [by intros []|]. intros Ht. inversion Ht as [|? ? ? ? _ Ht']; subst.
      inversion Ht'; subst. by destruct Hlink.
Qed.

(** Validation is type checking: a pipeline is accepted exactly when it has a stage and
    its stages take its input schema, link by link, to its output schema. *)
Lemma validate_typed spec :
  PipelineSpec.validate spec = Ok tt ↔
  PipelineSpec.stages spec ≠ [] ∧
  stages_typed (PipelineSpec.initial_input_schema spec) (PipelineSpec.stages spec)
    (PipelineSpec.final_output_schema spec).
Proof.
  unfold PipelineSpec.validate. destruct (PipelineSpec.stages spec) as [|first stages] eqn:Hs.
  { split; [done|]. by intros []. }
  destruct (last (first :: stages)) as [l|] eqn:Hl; [|by apply last_None in Hl].
  pose proof (check_links_typed first stages (PipelineSpec.final_output_schema spec) l Hl) as HT.
  case_bool_decide as Hi; simpl negb; cbv iota.
  - rewrite Hi in HT. destruct (PipelineSpec.check_links (first :: stages)) as [[]|e] eqn:Hc.
    + case_bool_decide as Hf; simpl negb; cbv iota.
      * split; [|done]. intros _. split; [done|]. by apply HT.
      * split; [done|]. intros [_ Ht]. by apply HT in Ht as [_ ?].
    + split; [done|]. intros [_ Ht]. apply HT in Ht as [? _]. done.
  - split; [done|]. intros [_ Ht]. inversion Ht; subst. done.
Qed.

Section run.
Context {K : Type} `{KernelApi K} `{UuidFormat} `{StageCodec}.
Context (uuids : nat → Uuid) (token : K → option CancellationReason.t).
Notation st := (K * nat)%type.
Implicit Types (s : st).

(** ** One stage *)

(** The entries of the attempts of one stage from number [i] on, all of which asked to be
    retried. *)
Definition retries_from (stage : StageSpec.t) (i : N) (es : list StageTraceEntry.t) : Prop :=
  ∀ j e, es !! j = Some e →
    StageTraceEntry.stage_id e = StageSpec.id stage ∧
    StageTraceEntry.attempt e = i + N.of_nat j ∧
    ∃ error, StageTraceEntry.result e = StageExecutionResult.Retrying error.

(** What the loop adds to the trace, by its result. *)
Definition attempts_from (stage : StageSpec.t) (i : N) (r : StageResult.t)
    (es : list StageTraceEntry.t) : Prop :=
  N.of_nat (length es) + i ≤ RetryPolicy.max_retries (StageSpec.retry_policy stage) + 1 ∧
  match r with
  | StageResult.Success _ caps =>
      ∃ es' e, es = es' ++ [e] ∧ retries_from stage i es' ∧
        StageTraceEntry.stage_id e = StageSpec.id stage ∧
        StageTraceEntry.attempt e = i + N.of_nat (length es') ∧
        StageTraceEntry.result e = StageExecutionResult.Success ∧
        StageTraceEntry.capabilities_out e = caps
  | StageResult.Retryable _ => False
  | _ => True
  end.

Lemma attempts_cons stage i r e es error :
  StageTraceEntry.stage_id e = StageSpec.id stage → StageTraceEntry.attempt e = i →
  StageTraceEntry.result e = StageExecutionResult.Retrying error →
  attempts_from stage (i + 1) r es → attempts_from stage i r (e :: es).
Proof.
  intros Hid Ha Hr [Hlen Hcase]. split; [simpl; lia|].
  destruct r as [out caps| | |]; try done.
  destruct Hcase as (es' & e' & -> & Hes & Hid' & Ha' & Hrest).
  exists (e :: es'), e'. split; [done|]. split; [|split; [done|split; [simpl length; lia|done]]].
  intros [|j] e0 Hj; simpl in Hj.
  - injection Hj as <-. split_and!; [done|lia|by eexists].
  - destruct (Hes j e0 Hj) as (? & ? & ?). split_and!; [done|lia|done].
Qed.

Lemma retry_loop_spec fuel stage input d i trace s r trace' s' :
  i ≤ RetryPolicy.max_retries (StageSpec.retry_policy stage) →
  retry_loop uuids token fuel stage input d i trace s = Return (Ok r, (trace', s')) →
  ∃ es, ExecutionTrace.entries trace' = ExecutionTrace.entries trace ++ es ∧
    ExecutionTrace.pipeline_id trace' = ExecutionTrace.pipeline_id trace ∧
    attempts_from stage i r es.
Proof.
  revert i trace s. induction fuel as [|fuel IH]; intros i trace s Hi; [done|].
  cbn [retry_loop].
  destruct (is_cancelled token s).
  { intros [= <- <- <-]. exists []. rewrite app_nil_r. repeat split. simpl. lia. }
  destruct (deadline_passed d s.1).
  { intros [= <- <- <-]. exists []. rewrite app_nil_r. repeat split. simpl. lia. }
  intros ([[res|e] s1] & E1 & E)%bind_Return; [|done].
  set (entry := trace_entry stage _ _ i res) in E.
  destruct res as [out caps|err|err|rs].
  - injection E as <- <- <-. exists [entry]. split_and!; [done|done|].
    split; [simpl; lia|]. exists [], entry. by rewrite N.add_0_r.
  - injection E as <- <- <-. exists [entry]. split_and!; [done|done|split; [simpl; lia|done]].
  - destruct (N.leb_spec (RetryPolicy.max_retries (StageSpec.retry_policy stage)) i).
    { injection E as <- <- <-. exists [entry]. split_and!; [done|done|split; [simpl; lia|done]]. }
    assert (∃ s2, retry_loop uuids token fuel stage input d (i + 1)
      (ExecutionTrace.add_entry entry trace) s2 = Return (Ok r, (trace', s'))) as (s2 & E2).
    { destruct (0 <? _); [|by eauto]. apply bind_Return in E as (dd & _ & E).
      apply bind_Return in E as ([? k] & _ & E). by eauto. }
    apply IH in E2 as (es & Hes & Hid & Hat); [|lia]. exists (entry :: es).
    split_and!; [|done|].
    + rewrite Hes. simpl. by rewrite <- app_assoc.
    + by eapply attempts_cons.
  - injection E as <- <- <-. exists [entry]. split_and!; [done|done|split; [simpl; lia|done]].
Qed.

(** ** All stages *)

(** The entries of a successful stage. *)
Definition stage_group (stage : StageSpec.t) (es : list StageTraceEntry.t) : Prop :=
  ∃ out caps, attempts_from stage 0 (StageResult.Success out caps) es.

Lemma run_stage_ok spec d auth stage x trace input s trace' out x' s' :
  run_stage uuids token spec d auth stage x trace input s = Return (Ok (trace', out), (x', s')) →
  ∃ es, ExecutionTrace.entries trace' = ExecutionTrace.entries trace ++ es ∧ stage_group stage es.
Proof.
  unfold run_stage. destruct (is_cancelled _ _); [done|]. destruct (deadline_passed _ _); [done|].
  destruct (stage_authority _ _ _ _ _ _) as [[a|e] s1]; [|done].
  destruct (missing_capability _ _ _); [done|].
  intros ([r [trace1 s2]] & E1 & E)%bind_Return. destruct r as [res|e]; [|done].
  apply bind_Return in E1 as (dd & _ & E1).
  apply retry_loop_spec in E1 as (es & Hes & _ & Hat); [|lia].
  destruct res as [out' caps|?|?|?]; [|done..].
  injection E as -> _ _ _. exists es. split; [done|]. by exists out', caps.
Qed.

Lemma run_stages_ok spec d auth stages x trace input s trace' out x' s' :
  run_stages uuids token spec d auth stages x trace input s = Return (Ok (trace', out), (x', s')) →
  ∃ groups, ExecutionTrace.entries trace' = ExecutionTrace.entries trace ++ concat groups ∧
    Forall2 stage_group stages groups.
Proof.
  revert x trace input s. induction stages as [|stage stages IH]; intros x trace input s;
    cbn [run_stages].
  { intros [= -> _ _ _]. exists []. by rewrite app_nil_r. }
  intros ([[[trace1 out1]|e] [x1 s1]] & E1 & E)%bind_Return; [|done].
  apply run_stage_ok in E1 as (es & Hes & Hg). apply IH in E as (groups & Hgs & HF).
  exists (es :: groups). split; [|by constructor].
  rewrite Hgs, Hes. simpl. by rewrite <- app_assoc.
Qed.

(** A run that succeeds has run every stage, in order: its trace is, stage by stage,
    the attempts of that stage, numbered from 0, of which all but the last asked for a
    retry and the last succeeded, at most one more than the stage's retries; its final
    result is success and its output has the pipeline's output schema. *)
Theorem successful_run_traces_every_stage spec input x s out trace x' s' :
  execute uuids token spec input x s = Return (Ok (out, trace), (x', s')) →
  (∃ groups, ExecutionTrace.entries trace = concat groups ∧
     Forall2 stage_group (PipelineSpec.stages spec) groups) ∧
  ExecutionTrace.final_result trace = PipelineExecutionResult.Success ∧
  TypedPayload.schema_id out = PipelineSpec.final_output_schema spec.
Proof.
  unfold execute. destruct (PipelineSpec.validate spec); [|done].
  destruct (is_cancelled _ _); [done|]. case_bool_decide; [|done]. simpl negb. cbv iota.
  destruct (execution_authority _ _ _ _) as [[a|e] s1]; [|done].
  intros (d & _ & ([[[trace1 out1]|e] [x1 s2]] & E & E')%bind_Return)%bind_Return; [|done].
  apply run_stages_ok in E as (groups & Hg & HF).
  revert E'. case_bool_decide as Hsch; [|done]. simpl. intros [= <- <- _ _].
  split_and!; [|done|done]. exists groups. split; [exact Hg|done].
Qed.

(** ** Termination *)

(** Kernels whose calls return, with a clock in the lower half of its range. *)
Record responsive : Prop := {
  sends_return c m k : returns (api_send_message c m k);
  receives_return c t k : returns (api_receive_message c t k);
  sleeps_return d k : returns (api_sleep d k);
  clock_bounded k : Instant.nanos (api_now k) ≤ 2 ^ 63
}.

(** Milliseconds whose nanoseconds fit the other half. *)
Definition short (ms : N) : Prop := ms ≤ 2 ^ 63 / 1000000 - 1.
Definition stage_short (stage : StageSpec.t) : Prop :=
  (∀ ms, StageSpec.timeout_ms stage = Some ms → short ms) ∧
  (∀ i, i ≤ RetryPolicy.max_retries (StageSpec.retry_policy stage) →
     short (RetryPolicy.backoff_duration i (StageSpec.retry_policy stage))).

Lemma short_from_millis ms : short ms →
  Duration.from_millis ms = Return (Duration.mk (ms * 1000000)) ∧ ms * 1000000 ≤ 2 ^ 63 - 1.
Proof.
  unfold short. intros Hms. assert (ms ≤ 9223372036853) as Hle by done.
  split; [|lia]. unfold Duration.from_millis.
  assert (mul_u64 ms 1000000 = Return (ms * 1000000)) as ->; [|done].
  apply mul_u64_Return. unfold u64_max. split; [done|lia].
Qed.

Lemma deadline_returns ms k : responsive → (∀ m, ms = Some m → short m) →
  returns (deadline_after ms k).
Proof.
  intros HR Hs. destruct ms as [m|]; [|by eexists]. simpl.
  destruct (short_from_millis m (Hs m eq_refl)) as [-> Hle]. simpl.
  unfold Instant.add. pose proof (clock_bounded HR k). simpl.
  assert (add_u64 (Instant.nanos (api_now k)) (m * 1000000)
    = Return (Instant.nanos (api_now k) + m * 1000000)) as ->; [|by eexists].
  apply add_u64_Return. unfold u64_max. split; [done|lia].
Qed.

Lemma kernel_call_returns {A} prefix (m : outcome (result A KernelError.t * K)) n :
  returns m → returns (kernel_call prefix m n).
Proof. intros [[r k] ->]. by eexists. Qed.

Lemma stage_once_returns stage input s : responsive → stage_short stage →
  returns (execute_stage_once uuids stage input s).
Proof.
  intros HR [Ht _]. unfold execute_stage_once.
  destruct (api_lookup_service _ _) as [c|[]]; try by eexists.
  destruct (encode_request input) as [p|e]; [|by eexists]. simpl.
  match goal with |- returns (try_bind (kernel_call ?pre ?m ?n) _) =>
    destruct (kernel_call_returns pre m n) as [[[u|e] s1] ->]; [apply (sends_return HR)| |by eexists] end.
  simpl. assert (∃ t, match StageSpec.timeout_ms stage with
    | Some ms => d ← Duration.from_millis ms; Return (Some d) | None => Return None end = Return t)
    as [t ->].
  { destruct (StageSpec.timeout_ms stage) as [ms|]; [|by eexists].
    destruct (short_from_millis ms (Ht ms eq_refl)) as [-> _]. by eexists. }
  simpl. match goal with |- returns (try_bind (kernel_call ?pre ?m ?n) _) =>
    destruct (kernel_call_returns pre m n) as [[[resp|e] s2] ->]; [apply (receives_return HR)| |by eexists] end.
  simpl. destruct (negb _); [by eexists|]. destruct (decode_response _); by eexists.
Qed.

Lemma retry_loop_returns fuel stage input d i trace s : responsive → stage_short stage →
  (N.to_nat (RetryPolicy.max_retries (StageSpec.retry_policy stage)) < fuel + N.to_nat i)%nat →
  i ≤ RetryPolicy.max_retries (StageSpec.retry_policy stage) →
  returns (retry_loop uuids token fuel stage input d i trace s).
Proof.
  intros HR HS. revert i trace s. induction fuel as [|fuel IH]; intros i trace s Hf Hi; [lia|].
  cbn [retry_loop]. destruct (is_cancelled token s); [by eexists|].
  destruct (deadline_passed d s.1); [by eexists|].
  destruct (stage_once_returns stage input s HR HS) as [[[r|e] s1] ->]; [|by eexists]. simpl.
  destruct r as [out caps|err|err|rs]; [by eexists..| |by eexists].
  destruct (N.leb_spec (RetryPolicy.max_retries (StageSpec.retry_policy stage)) i); [by eexists|].
  destruct (0 <? _); [|apply IH; lia].
  destruct HS as [_ HB]. destruct (short_from_millis _ (HB (i + 1) ltac:(lia))) as [-> _]. simpl.
  destruct (sleeps_return HR (Duration.mk (RetryPolicy.backoff_duration (i + 1)
    (StageSpec.retry_policy stage) * 1000000)) s1.1) as [[? k] ->]. simpl. apply IH; lia.
Qed.

Lemma run_stage_returns spec d auth stage x trace input s : responsive → stage_short stage →
  returns (run_stage uuids token spec d auth stage x trace input s).
Proof.
  intros HR HS. unfold run_stage.
  destruct (is_cancelled _ _); [by eexists|]. destruct (deadline_passed _ _); [by eexists|].
  destruct (stage_authority _ _ _ _ _ _) as [[a|e] s1]; [|by eexists].
  destruct (missing_capability _ _ _); [by eexists|]. unfold execute_stage_with_retry.
  destruct (deadline_returns (StageSpec.timeout_ms stage) s1.1 HR) as [dd ->]; [apply HS|].
  cbn [mbind outcome_bind].
  destruct (retry_loop_returns (S (N.to_nat (RetryPolicy.max_retries (StageSpec.retry_policy stage))))
    stage input dd 0 trace s1 HR HS) as [[[r|e] [trace1 s2]] ->]; [lia|lia| |by eexists].
  cbn [mbind outcome_bind]. destruct r; by eexists.
Qed.

(** C39: the executor terminates: with a kernel whose calls return, and timeouts and
    back-offs short enough for the 64-bit clock, executing any pipeline returns a result;
    the retry loop turns at most once more than the stage's retries. *)
Theorem execute_terminates spec input x s :
  responsive → (∀ ms, PipelineSpec.timeout_ms spec = Some ms → short ms) →
  Forall stage_short (PipelineSpec.stages spec) →
  returns (execute uuids token spec input x s).
Proof.
  intros HR Hp HF. unfold execute. destruct (PipelineSpec.validate spec); [|by eexists].
  destruct (is_cancelled _ _); [by eexists|]. case_bool_decide; [|by eexists]. simpl negb. cbv iota.
  destruct (execution_authority _ _ _ _) as [[a|e] s1]; [|by eexists].
  destruct (deadline_returns (PipelineSpec.timeout_ms spec) s1.1 HR Hp) as [d ->].
  cbn [mbind outcome_bind].
  assert (∀ x trace input s2, returns (run_stages uuids token spec d a (PipelineSpec.stages spec)
    x trace input s2)) as Hrun.
  { clear -HF HR. induction HF as [|stage stages HS _ IH]; intros x trace input s; [by eexists|].
    cbn [run_stages].
    destruct (run_stage_returns spec d a stage x trace input s HR HS) as [[[[t o]|e] [x1 s1]] ->];
      [|by eexists]. simpl. apply IH. }
  destruct (Hrun x (ExecutionTrace.new (PipelineSpec.id spec)) input s1)
    as [[[[trace out]|e] [x1 s2]] ->]; [|by eexists]. simpl. case_bool_decide; by eexists.
Qed.

(** ** Authority *)

Lemma missing_capability_none x stage auth :
  missing_capability x stage auth = None →
  ∀ c, c ∈ StageSpec.required_capabilities stage → has_capability c x = true ∧
    ∀ a, auth = Some a → c ∈ CapabilitySet.capabilities a.
Proof.
  unfold missing_capability. intros Hm%head_None c Hc.
  destruct (has_capability_with_authority c auth x) eqn:E.
  - unfold has_capability_with_authority in E. destruct (has_capability c x); [|done].
    split; [done|]. intros a ->. by apply bool_decide_eq_true in E.
  - assert (c ∈ filter (λ c, has_capability_with_authority c auth x = false)
      (StageSpec.required_capabilities stage)) as Hin by (by apply list_elem_of_filter).
    rewrite Hm in Hin. by apply elem_of_nil in Hin.
Qed.

Lemma apply_decision_ok policy event spec auth current d a :
  apply_decision policy event spec auth current d = Ok a →
  PolicyDecision.is_allow d = true ∧
  (a = auth ∨ ∃ b, a = Some b ∧ CapabilitySet.capabilities b ⊆ CapabilitySet.capabilities current).
Proof.
  unfold apply_decision. destruct d as [[dd|]|?|?]; try done.
  - unfold CapabilitySet.is_subset_of. case_bool_decide; [|done]. intros [= <-].
    split; [done|]. right. by eexists.
  - intros [= <-]. auto.
Qed.

(** No stage runs without permission: whenever a stage reaches the kernel (its state
    changes), the token was not cancelled, the pipeline's deadline had not passed, the
    policy engine, if there is one, allowed this stage, and every required capability is
    in the pool and, under a restricted authority, in that authority; an authority
    derived for the stage is within the one derived for the pipeline. *)
Theorem stage_runs_only_when_permitted spec d auth stage x trace input s r x' s' :
  run_stage uuids token spec d auth stage x trace input s = Return (r, (x', s')) →
  s'.1 ≠ s.1 →
  is_cancelled token s = false ∧ deadline_passed d s.1 = false ∧
  ∃ a, (stage_authority uuids x spec stage auth s).1 = Ok a ∧
    (∀ p, policy_engine x = Some p → ∃ context,
       PolicyDecision.is_allow (PolicyEngine.evaluate p PolicyEvent.OnPipelineStageStart context) = true ∧
       PolicyContext.stage_id context = Some (StageSpec.id stage)) ∧
    (∀ c, c ∈ StageSpec.required_capabilities stage → has_capability c x = true ∧
       (∀ b, a = Some b → c ∈ CapabilitySet.capabilities b) ∧
       (∀ e, auth = Some e → c ∈ CapabilitySet.capabilities e)).
Proof.
  unfold run_stage. destruct (is_cancelled token s) eqn:Hc; [by intros [= <- <- <-]|].
  destruct (deadline_passed d s.1) eqn:Hd; [by intros [= <- <- <-]|].
  destruct (stage_authority uuids x spec stage auth s) as [ra s1] eqn:Ha.
  assert (s1.1 = s.1) as Hs1.
  { unfold stage_authority, build_stage_context, actor_identity, draw in Ha.
    destruct (policy_engine x); [|by injection Ha as _ <-].
    destruct (identity x); by injection Ha as _ <-. }
  destruct ra as [a|e]; [|intros [= <- <- <-]; by rewrite Hs1].
  destruct (missing_capability x stage a) as [m|] eqn:Hm; [intros [= <- <- <-]; by rewrite Hs1|].
  intros _ _. split_and!; [done|done|]. exists a. split; [done|].
  unfold stage_authority in Ha.
  pose proof (missing_capability_none x stage a Hm) as Hcaps.
  destruct (policy_engine x) as [p|] eqn:Hp.
  - destruct (build_stage_context uuids x spec stage s) as [ctx s2] eqn:Hctx.
    injection Ha as Ha _. apply apply_decision_ok in Ha as [Hallow Hsub]. split.
    + intros p' [= <-]. exists ctx. split; [done|].
      unfold build_stage_context in Hctx. destruct (actor_identity _ _ _) as [actor s3].
      injection Hctx as <- _. by destruct (StageSpec.timeout_ms stage).
    + intros c Hin. destruct (Hcaps c Hin) as [? Hb]. split_and!; [done|done|].
      intros e ->. simpl in Hsub. destruct Hsub as [->|(b & -> & Hsub)]; [by apply Hb|].
      apply Hsub. by apply Hb.
  - injection Ha as -> _. split; [done|]. intros c Hin. destruct (Hcaps c Hin). done.
Qed.

(** ** Type soundness *)

(** Handlers that answer with the schema their stage declares. *)
Definition handlers_typed (stages : list StageSpec.t) : Prop :=
  ∀ stage input s out caps s', stage ∈ stages →
    execute_stage_once uuids stage input s = Return (Ok (StageResult.Success out caps), s') →
    TypedPayload.schema_id out = StageSpec.output_schema stage.

Lemma retry_loop_typed fuel stage input d i trace s out caps trace' s' stages :
  handlers_typed stages → stage ∈ stages →
  retry_loop uuids token fuel stage input d i trace s
  = Return (Ok (StageResult.Success out caps), (trace', s')) →
  TypedPayload.schema_id out = StageSpec.output_schema stage.
Proof.
  intros HT Hin. revert i trace s. induction fuel as [|fuel IH]; intros i trace s; [done|].
  cbn [retry_loop]. destruct (is_cancelled token s); [done|]. destruct (deadline_passed d s.1); [done|].
  intros ([[res|e] s1] & E1 & E)%bind_Return; [|done].
  destruct res as [out' caps'|err|err|rs]; try done.
  - injection E as -> _ _ _. by eapply HT.
  - destruct (_ <=? _); [done|]. destruct (0 <? _); [|by eapply IH].
    apply bind_Return in E as (dd & _ & E). apply bind_Return in E as ([? k] & _ & E). by eapply IH.
Qed.

Lemma run_stage_typed spec d auth stage x trace input s trace' out x' s' stages :
  handlers_typed stages → stage ∈ stages →
  run_stage uuids token spec d auth stage x trace input s = Return (Ok (trace', out), (x', s')) →
  TypedPayload.schema_id out = StageSpec.output_schema stage.
Proof.
  intros HT Hin. unfold run_stage. destruct (is_cancelled _ _); [done|].
  destruct (deadline_passed _ _); [done|].
  destruct (stage_authority _ _ _ _ _ _) as [[a|e] s1]; [|done].
  destruct (missing_capability _ _ _); [done|].
  intros ([[res|e] [trace1 s2]] & E1 & E)%bind_Return; [|done].
  apply bind_Return in E1 as (dd & _ & E1).
  destruct res as [out' caps|?|?|?]; [|done..]. injection E as _ -> _ _. by eapply retry_loop_typed.
Qed.

Lemma run_stages_typed spec d auth stages all x trace input s trace' out x' s' a b :
  handlers_typed all → (∀ stage, stage ∈ stages → stage ∈ all) →
  stages_typed a stages b → TypedPayload.schema_id input = a →
  run_stages uuids token spec d auth stages x trace input s = Return (Ok (trace', out), (x', s')) →
  TypedPayload.schema_id out = b.
Proof.
  intros HT Hin Hst. revert x trace input s Hin.
  induction Hst as [a|a stage stages b Ha _ IH]; intros x trace input s Hin Hi; cbn [run_stages].
  { by intros [= _ <- _ _]. }
  intros ([[[trace1 out1]|e] [x1 s1]] & E1 & E)%bind_Return; [|done].
  eapply IH; [| |exact E]; [set_solver|]. eapply run_stage_typed; [done| |exact E1]. set_solver.
Qed.

Lemma stages_typed_app a pre rest b : stages_typed a (pre ++ rest) b →
  ∃ c, stages_typed a pre c ∧ stages_typed c rest b.
Proof.
  revert a. induction pre as [|stage pre IH]; intros a Ht; simpl in Ht; [by exists a; split; [constructor|]|].
  inversion Ht as [|? ? ? ? Hi Ht']; subst. apply IH in Ht' as (c & ? & ?).
  exists c. split; [by constructor|done].
Qed.

(** Schema errors are reported by the checks at the two ends of a run only. *)
Definition is_schema_error (e : ExecutorError.t) : bool :=
  match e with ExecutorError.SchemaValidation _ _ => true | _ => false end.

Lemma apply_decision_error policy event spec auth current d e :
  apply_decision policy event spec auth current d = Err e → is_schema_error e = false.
Proof.
  unfold apply_decision. destruct d as [[dd|]|?|?]; try (by intros [= <-]).
  destruct (negb _); by intros [= <-].
Qed.

Lemma kernel_call_error {A} prefix (m : outcome (result A KernelError.t * K)) n e s :
  kernel_call prefix m n = Return (Err e, s) → is_schema_error e = false.
Proof. intros ([[?|?] k] & _ & [= <- <-])%bind_Return. done. Qed.

Lemma stage_once_error stage input s e s' :
  execute_stage_once uuids stage input s = Return (Err e, s') → is_schema_error e = false.
Proof.
  unfold execute_stage_once. destruct (api_lookup_service _ _) as [c|[]]; try (by intros [= <- <-]).
  destruct (encode_request input); [|by intros [= <- <-]]. simpl.
  intros [(u & s1 & _ & E)|(e' & E & [= <-])]%try_bind_Return; [|by eapply kernel_call_error].
  apply bind_Return in E as (t & _ & E).
  apply try_bind_Return in E as [(resp & s2 & _ & E)|(e' & E & [= <-])];
    [|by eapply kernel_call_error].
  destruct (negb _); [by simplify_eq|]. destruct (decode_response _); by simplify_eq.
Qed.

Lemma retry_loop_error fuel stage input d i trace s e ts :
  retry_loop uuids token fuel stage input d i trace s = Return (Err e, ts) →
  is_schema_error e = false.
Proof.
  revert i trace s. induction fuel as [|fuel IH]; intros i trace s; [done|].
  cbn [retry_loop]. destruct (is_cancelled token s); [done|]. destruct (deadline_passed d s.1); [done|].
  intros ([[res|e'] s1] & E1 & E)%bind_Return; [|simplify_eq; by eapply stage_once_error].
  destruct res as [out' caps'|err|err|rs]; try done.
  destruct (_ <=? _); [done|]. destruct (0 <? _); [|by eapply IH].
  apply bind_Return in E as (dd & _ & E). apply bind_Return in E as ([? k] & _ & E). by eapply IH.
Qed.

Lemma run_stage_error spec d auth stage x trace input s e xs :
  run_stage uuids token spec d auth stage x trace input s = Return (Err e, xs) →
  is_schema_error e = false.
Proof.
  unfold run_stage. destruct (is_cancelled _ _); [by intros [= <- _]|].
  destruct (deadline_passed _ _); [by intros [= <- _]|].
  destruct (stage_authority uuids x spec stage auth s) as [[a|e'] s1] eqn:Ha.
  2:{ intros [= -> _]. unfold stage_authority in Ha. destruct (policy_engine x); [|done].
      destruct (build_stage_context _ _ _ _ _). injection Ha as Ha _. by eapply apply_decision_error. }
  destruct (missing_capability _ _ _); [by intros [= <- _]|].
  intros ([[res|e'] [trace1 s2]] & E1 & E)%bind_Return.
  - destruct res as [out' caps|?|?|?]; [done|by injection E as <- _..].
  - simplify_eq. apply bind_Return in E1 as (dd & _ & E1). by eapply retry_loop_error.
Qed.

Lemma run_stages_error spec d auth stages x trace input s e xs :
  run_stages uuids token spec d auth stages x trace input s = Return (Err e, xs) →
  is_schema_error e = false.
Proof.
  revert x trace input s. induction stages as [|stage stages IH]; intros x trace input s;
    cbn [run_stages]; [done|].
  intros ([[[trace1 out1]|e'] [x1 s1]] & E1 & E)%bind_Return; [by eapply IH|].
  simplify_eq. by eapply run_stage_error.
Qed.

(** C27: type soundness: when a pipeline is valid and the handlers answer with the schemas
    their stages declare, every stage that is reached is given a payload of its input
    schema, and the run never fails a schema check. *)
Theorem valid_pipeline_runs_typed spec input x s :
  PipelineSpec.validate spec = Ok tt → handlers_typed (PipelineSpec.stages spec) →
  TypedPayload.schema_id input = PipelineSpec.initial_input_schema spec →
  (∀ d auth pre stage post trace mid trace' x' s',
     PipelineSpec.stages spec = pre ++ stage :: post →
     run_stages uuids token spec d auth pre x trace input s = Return (Ok (trace', mid), (x', s')) →
     TypedPayload.schema_id mid = StageSpec.input_schema stage) ∧
  (∀ expected actual xs,
     execute uuids token spec input x s
     ≠ Return (Err (ExecutorError.SchemaValidation expected actual), xs)).
Proof.
  intros Hv HT Hi. pose proof Hv as Hok. apply validate_typed in Hv as [_ Ht]. split.
  - intros d auth pre stage post trace mid trace' x' s' Hs Hr. rewrite Hs in Ht, HT.
    apply stages_typed_app in Ht as (c & Hpre & Hrest).
    inversion Hrest; subst. eapply run_stages_typed; [done| |done|done|exact Hr]. set_solver.
  - intros expected actual xs. unfold execute. rewrite Hok.
    destruct (is_cancelled _ _); [done|]. rewrite bool_decide_eq_true_2 by done. simpl negb. cbv iota.
    destruct (execution_authority uuids x spec s) as [[a|e] s1] eqn:Ea.
    + intros (d & _ & ([[[trace1 out1]|e] [x1 s2]] & E & E')%bind_Return)%bind_Return.
      * rewrite bool_decide_eq_true_2 in E'; [done|].
        eapply run_stages_typed; [done| |done|done|exact E]. done.
      * simplify_eq. by apply run_stages_error in E.
    + intros [= -> _]. unfold execution_authority in Ea. destruct (policy_engine x); [|done].
      destruct (build_pipeline_context _ _ _ _). injection Ea as Ea _.
      by apply apply_decision_error in Ea.
Qed.
End run.

(** ** A kernel for examples

    It answers the last request sent with the next prepared payload. *)
Record toy := Toy { last_request : option MessageEnvelope.t; answers : list (list N); clock : N }.
Definition toy_answer (k : toy) : result MessageEnvelope.t KernelError.t * toy :=
  match last_request k, answers k with
  | Some m, a :: rest =>
      (Ok (MessageEnvelope.with_correlation (MessageEnvelope.id m)
             (MessageEnvelope.new (MessageId.mk 0) (MessageEnvelope.destination m) "reply"
                (MessageEnvelope.schema_version m) (MessagePayload.mk a))),
       Toy None rest (clock k))
  | _, _ => (Err KernelError.Timeout, k)
  end.
Definition toy_unsupported {A} (k : toy) : outcome (result A KernelError.t * toy) :=
  Return (Err KernelError.Timeout, k).
#[local] Instance toy_kernel : KernelApi toy := {|
  api_spawn_task _ _ := toy_unsupported;
  api_create_channel _ := toy_unsupported;
  api_send_message _ m k := Return (Ok tt, Toy (Some m) (answers k) (clock k));
  api_receive_message _ _ k := Return (toy_answer k);
  api_now k := Instant.mk (N.min (clock k) (2 ^ 63));
  api_sleep d k := Return (Ok tt, Toy (last_request k) (answers k) (clock k + Duration.nanos d));
  api_grant_capability _ _ := toy_unsupported;
  api_register_service _ _ := toy_unsupported;
  api_lookup_service id k := Ok (ChannelId.mk (ServiceId.uuid id))
|}.
(** An answer that starts with 0 asks for a retry; any other is an output of schema
    "text" with capability 7. *)
Definition text : PayloadSchemaId.t := PayloadSchemaId.new "text".
Definition payload (data : list N) : TypedPayload.t :=
  TypedPayload.new text (PayloadSchemaVersion.new 1 0) data.
#[local] Instance toy_codec : StageCodec := {|
  encode_request p := Ok (MessagePayload.mk (TypedPayload.data p));
  decode_response p :=
    match MessagePayload.data p with
    | 0 :: _ => Ok (StageResult.Retryable "busy")
    | d => Ok (StageResult.Success (payload d) [7])
    end
|}.
#[local] Existing Instance sample_format.

Definition toy_stage (n : N) (caps : list N) : StageSpec.t :=
  StageSpec.with_capabilities caps (StageSpec.with_retry_policy (RetryPolicy.exponential_backoff 2 100)
    (StageSpec.new (StageId.mk n) "stage" (ServiceId.mk n) "run" text text)).
Definition toy_pipeline : PipelineSpec.t :=
  PipelineSpec.add_stage (toy_stage 2 [7]) (PipelineSpec.add_stage (toy_stage 1 [])
    (PipelineSpec.new (PipelineId.mk 9) "toy" text text)).
Definition toy_start : toy := Toy None [[0]; [0]; [5]; [6]] 0.
Definition toy_run := execute N.of_nat (λ _ : toy, None) toy_pipeline (payload [1]) new (toy_start, O).

(** The second stage needs the capability that the first produces; the first asks for two
    retries, which wait 100 and 200 milliseconds. *)
Example toy_run_result :
  match toy_run with
  | Return (Ok (out, trace), (x, (k, _))) =>
      out = payload [6] ∧
      (StageTraceEntry.attempt <$> ExecutionTrace.entries trace) = [0; 1; 2; 0] ∧
      clock k = 300000000 ∧ has_capability 7 x = true
  | _ => False
  end.
Proof. by vm_compute. Qed.

Lemma successful_run_traces_every_stage_witness :
  match toy_run with
  | Return (Ok (out, trace), _) =>
      (∃ groups, ExecutionTrace.entries trace = concat groups ∧
         Forall2 stage_group (PipelineSpec.stages toy_pipeline) groups) ∧
      ExecutionTrace.final_result trace = PipelineExecutionResult.Success ∧
      TypedPayload.schema_id out = PipelineSpec.final_output_schema toy_pipeline
  | _ => False
  end.
Proof.
  assert (match toy_run with Return (Ok _, _) => true | _ => false end = true) as Hr by by vm_compute.
  destruct toy_run as [[[[out trace]|e] [x s]]| |] eqn:E; try discriminate Hr.
  exact (successful_run_traces_every_stage N.of_nat (λ _ : toy, None) toy_pipeline (payload [1]) new
    (toy_start, O) out trace x s E).
Defined.

Lemma toy_responsive : responsive (K := toy).
Proof. constructor; intros; [by eexists..|]. simpl. lia. Qed.

Lemma toy_stage_short n caps : stage_short (toy_stage n caps).
Proof.
  split; [done|]. intros i Hi. simpl in Hi.
  assert (i = 0 ∨ i = 1 ∨ i = 2) as [->|[->| ->]] by lia; by vm_compute.
Qed.

Lemma execute_terminates_witness : returns toy_run.
Proof.
  apply (execute_terminates N.of_nat (λ _ : toy, None) toy_pipeline (payload [1]) new (toy_start, O));
    [apply toy_responsive|done|repeat constructor; apply toy_stage_short].
Defined.

Lemma stage_runs_only_when_permitted_witness :
  let x := add_capabilities [7] (with_policy_engine (PolicySpec.restricting_engine [7]) new) in
  match run_stage N.of_nat (λ _ : toy, None) toy_pipeline None
          (Some (CapabilitySet.from_capabilities [7; 8])) (toy_stage 2 [7]) x
          (ExecutionTrace.new (PipelineId.mk 9)) (payload [1]) (toy_start, O) with
  | Return (_, (_, s')) =>
      ∃ a, (stage_authority N.of_nat x toy_pipeline (toy_stage 2 [7])
              (Some (CapabilitySet.from_capabilities [7; 8])) (toy_start, O)).1 = Ok a ∧
        (∀ p, policy_engine x = Some p → ∃ context,
          PolicyDecision.is_allow (PolicyEngine.evaluate p PolicyEvent.OnPipelineStageStart context) = true ∧
          PolicyContext.stage_id context = Some (StageId.mk 2)) ∧
        (∀ c, c ∈ [7] → has_capability c x = true ∧
          (∀ b, a = Some b → c ∈ CapabilitySet.capabilities b) ∧
          (∀ e, Some (CapabilitySet.from_capabilities [7; 8]) = Some e →
             c ∈ CapabilitySet.capabilities e))
  | _ => False
  end.
Proof.
  intros x. set (auth := Some (CapabilitySet.from_capabilities [7; 8])).
  assert (match run_stage N.of_nat (λ _ : toy, None) toy_pipeline None auth (toy_stage 2 [7]) x
          (ExecutionTrace.new (PipelineId.mk 9)) (payload [1]) (toy_start, O) with
          | Return (_, (_, s')) => bool_decide (answers s'.1 = answers toy_start) | _ => true end
          = false) as Hr by by vm_compute.
  destruct (run_stage _ _ _ _ _ _ _ _ _ _) as [[r [x' s']]| |] eqn:E; try discriminate Hr.
  apply (stage_runs_only_when_permitted N.of_nat (λ _ : toy, None) toy_pipeline None auth
    (toy_stage 2 [7]) x (ExecutionTrace.new (PipelineId.mk 9)) (payload [1]) (toy_start, O) r x' s' E).
  intros Heq. rewrite Heq in Hr. by rewrite bool_decide_eq_true_2 in Hr.
Defined.

Lemma toy_handlers_typed stages :
  (∀ stage, stage ∈ stages → StageSpec.output_schema stage = text) →
  handlers_typed (K := toy) N.of_nat stages.
Proof.
  intros Ho stage input s out caps s' Hin. rewrite (Ho stage Hin). unfold execute_stage_once. simpl.
  intros (t & _ & E)%bind_Return. revert E. unfold kernel_call, toy_answer. simpl.
  destruct (answers s.1) as [|a rest]; simpl; [done|]. rewrite bool_decide_eq_true_2 by done. simpl.
  destruct a as [|[|p] a]; simpl; [by intros [= <- _ _]|done|by intros [= <- _ _]].
Qed.

Lemma valid_pipeline_runs_typed_witness :
  PipelineSpec.validate toy_pipeline = Ok () ∧
  ∀ expected actual xs, toy_run ≠ Return (Err (ExecutorError.SchemaValidation expected actual), xs).
Proof.
  split; [by vm_compute|].
  apply (valid_pipeline_runs_typed N.of_nat (λ _ : toy, None) toy_pipeline (payload [1]) new (toy_start, O));
    [by vm_compute| |done].
  apply toy_handlers_typed. intros stage Hin. simpl in Hin.
  apply elem_of_cons in Hin as [->|Hin]; [done|]. by apply list_elem_of_singleton in Hin as ->.
Defined.
End PipelineSafety.
