(* ===== verification/Jobs.v ===== *)
(** * Background jobs and supervised services

    [services_job_scheduler/src/lib.rs] and [services_process_manager/src]: a cooperative
    job queue with priorities, and the manager that restarts services when their tasks
    exit, written against [KernelApi]. *)

From S2P Require Import Prelude CoreTypes Identity SyscallGate Pipeline.
Open Scope string_scope.
Open Scope list_scope.
Open Scope N_scope.

(** ** Jobs ([services_job_scheduler/src/lib.rs]) *)

Module JobId.
(* services_job_scheduler/src/lib.rs:60-79 JobId *)
Record t := from_uuid { as_uuid : Uuid }.
#[global] Instance eq_dec : EqDecision t.
Proof. solve_decision. Defined.
(* services_job_scheduler/src/lib.rs:87-91 Display for JobId *)
Definition display `{UuidFormat} (id : t) : string := "job:" +:+ uuid_to_string (as_uuid id).
End JobId.

Module JobPriority.
(* services_job_scheduler/src/lib.rs:93-102 JobPriority *)
Inductive t := Low | Normal | High.
#[global] Instance eq_dec : EqDecision t.
Proof. solve_decision. Defined.
(** The derived order: by position. *)
Definition rank (p : t) : N := match p with Low => 0 | Normal => 1 | High => 2 end.
End JobPriority.

Module JobStatus.
(* services_job_scheduler/src/lib.rs:104-119 JobStatus *)
Inductive t := Pending | Running | Yielded | Completed | Failed | Cancelled.
#[global] Instance eq_dec : EqDecision t.
Proof. solve_decision. Defined.
(* services_job_scheduler/src/lib.rs:121-132 Display for JobStatus *)
Definition display (s : t) : string :=
  match s with
  | Pending => "Pending"
  | Running => "Running"
  | Yielded => "Yielded"
  | Completed => "Completed"
  | Failed => "Failed"
  | Cancelled => "Cancelled"
  end.
End JobStatus.

Module JobContext.
(* services_job_scheduler/src/lib.rs:134-149 JobContext *)
Record t := new { tick_count : N; job_ticks : N }.
End JobContext.

Module JobResult.
(* services_job_scheduler/src/lib.rs:151-159 JobResult *)
Inductive t := Completed | Yielded | Failed (error : string).
End JobResult.

(** A boxed [FnMut]: some captured state and what one call does with it. *)
Module JobFn.
(* services_job_scheduler/src/lib.rs:161-162 JobFn *)
Record t := mk {
  captured : Type;
  state : captured;
  body : JobContext.t → captured → JobResult.t * captured
}.
Definition call (f : t) (ctx : JobContext.t) : JobResult.t * t :=
  let '(r, s) := body f ctx (state f) in (r, mk (captured f) s (body f)).
End JobFn.

Module JobDescriptor.
(* services_job_scheduler/src/lib.rs:164-182 JobDescriptor *)
Record t := mk {
  id : JobId.t;
  name : string;
  priority : JobPriority.t;
  status : JobStatus.t;
  ticks_executed : N;
  progress : N;
  error : option string;
  executor : option JobFn.t
}.
#[global] Instance rebuild_t : Rebuild t := λ j,
  mk (id j) (name j) (priority j) (status j) (ticks_executed j) (progress j) (error j) (executor j).
(* services_job_scheduler/src/lib.rs:185-197 JobDescriptor::new *)
Definition new (id : JobId.t) (name : string) (priority : JobPriority.t) (executor : JobFn.t) : t :=
  mk id name priority JobStatus.Pending 0 0 None (Some executor).
(* services_job_scheduler/src/lib.rs:199-202 JobDescriptor::set_progress *)
Definition set_progress (p : N) (j : t) : t := j <| progress := N.min p 100 |>.
End JobDescriptor.

Module JobScheduler.
(* services_job_scheduler/src/lib.rs:205-215 JobScheduler *)
Record t := mk {
  pending_jobs : list JobDescriptor.t;
  running_job : option JobDescriptor.t;
  completed_jobs : list JobDescriptor.t;
  tick_count : N
}.
#[global] Instance rebuild_t : Rebuild t := λ s,
  mk (pending_jobs s) (running_job s) (completed_jobs s) (tick_count s).
(* services_job_scheduler/src/lib.rs:218-226 JobScheduler::new *)
Definition new : t := mk [] None [] 0.

(** [iter().position(..)]. *)
Definition position {A} (p : A → bool) (l : list A) : option nat :=
  fst <$> list_find (λ a, p a = true) l.

(* services_job_scheduler/src/lib.rs:228-242 JobScheduler::schedule_job *)
Definition schedule_job (job : JobDescriptor.t) (s : t) : JobId.t * t :=
  let lower j := JobPriority.rank (JobDescriptor.priority j)
                 <? JobPriority.rank (JobDescriptor.priority job) in
  let insert_pos := default (length (pending_jobs s)) (position lower (pending_jobs s)) in
  (JobDescriptor.id job, s <| pending_jobs ::= vec_insert insert_pos job |>).

(** Both counters are 64-bit and checked. *)
(* services_job_scheduler/src/lib.rs:260-289 JobScheduler::execute_and_handle_job *)
Definition execute_and_handle_job (job : JobDescriptor.t) (is_continuing : bool) (s : t) : outcome t :=
  let job := if is_continuing then job
             else job <| JobDescriptor.status := JobStatus.Running |> in
  ticks ← add_u64 (JobDescriptor.ticks_executed job) 1;
  let job := job <| JobDescriptor.ticks_executed := ticks |> in
  let ctx := JobContext.new (tick_count s) ticks in
  match JobDescriptor.executor job with
  | None => Return s
  | Some executor =>
      let '(r, executor) := JobFn.call executor ctx in
      let job := job <| JobDescriptor.executor := Some executor |> in
      match r with
      | JobResult.Completed =>
          let job := job <| JobDescriptor.status := JobStatus.Completed |>
                         <| JobDescriptor.progress := 100 |> <| JobDescriptor.executor := None |> in
          Return (s <| completed_jobs ::= λ l, l ++ [job] |>)
      | JobResult.Yielded =>
          let job := job <| JobDescriptor.status := JobStatus.Yielded |> in
          Return (s <| running_job := Some job |>)
      | JobResult.Failed error =>
          let job := job <| JobDescriptor.status := JobStatus.Failed |>
                         <| JobDescriptor.error := Some error |> <| JobDescriptor.executor := None |> in
          Return (s <| completed_jobs ::= λ l, l ++ [job] |>)
      end
  end.
(* services_job_scheduler/src/lib.rs:244-258 JobScheduler::tick *)
Definition tick (s : t) : outcome t :=
  n ← add_u64 (tick_count s) 1;
  let s := s <| tick_count := n |> in
  match running_job s with
  | Some job => execute_and_handle_job job true (s <| running_job := None |>)
  | None =>
      match pending_jobs s with
      | job :: rest => execute_and_handle_job job false (s <| pending_jobs := rest |>)
      | [] => Return s
      end
  end.
(* services_job_scheduler/src/lib.rs:296-299 JobScheduler::pending_count *)
Definition pending_count (s : t) : N := len (pending_jobs s).
(* services_job_scheduler/src/lib.rs:301-304 JobScheduler::completed_count *)
Definition completed_count (s : t) : N := len (completed_jobs s).
(* services_job_scheduler/src/lib.rs:306-309 JobScheduler::has_running_job *)
Definition has_running_job (s : t) : bool := bool_decide (is_Some (running_job s)).

(** The jobs in the order in which the queries look at them. *)
Definition search_order (s : t) : list JobDescriptor.t :=
  option_list (running_job s) ++ pending_jobs s ++ completed_jobs s.
Definition find_job (id : JobId.t) (s : t) : option JobDescriptor.t :=
  snd <$> list_find (λ j, JobDescriptor.id j = id) (search_order s).
(* services_job_scheduler/src/lib.rs:311-335 JobScheduler::get_job_status *)
Definition get_job_status (id : JobId.t) (s : t) : option JobStatus.t :=
  JobDescriptor.status <$> find_job id s.
(* services_job_scheduler/src/lib.rs:337-361 JobScheduler::get_job_progress *)
Definition get_job_progress (id : JobId.t) (s : t) : option N :=
  JobDescriptor.progress <$> find_job id s.
(* services_job_scheduler/src/lib.rs:363-375 JobScheduler::cancel_job *)
Definition cancel_job (id : JobId.t) (s : t) : bool * t :=
  match list_find (λ j, JobDescriptor.id j = id) (pending_jobs s) with
  | Some (pos, job) =>
      let job := job <| JobDescriptor.status := JobStatus.Cancelled |>
                     <| JobDescriptor.executor := None |> in
      (true, s <| pending_jobs ::= delete pos |> <| completed_jobs ::= λ l, l ++ [job] |>)
  | None => (false, s)
  end.
(* services_job_scheduler/src/lib.rs:377-383 JobScheduler::list_pending_jobs *)
Definition list_pending_jobs (s : t) : list (JobId.t * string) :=
  (λ j, (JobDescriptor.id j, JobDescriptor.name j)) <$> pending_jobs s.
(* services_job_scheduler/src/lib.rs:385-391 JobScheduler::list_completed_jobs *)
Definition list_completed_jobs (s : t) : list (JobId.t * string * JobStatus.t) :=
  (λ j, (JobDescriptor.id j, JobDescriptor.name j, JobDescriptor.status j)) <$> completed_jobs s.
End JobScheduler.

(** ** Supervised services ([services_process_manager/src]) *)

Module RestartPolicy.
(* services_process_manager/src/descriptor.rs:6-20 RestartPolicy *)
Inductive t := Never | Always | OnFailure | ExponentialBackoff (max_attempts : N).
End RestartPolicy.

Module ManagedDescriptor.
(* services_process_manager/src/descriptor.rs:22-37 ServiceDescriptor *)
Record t := mk {
  service_id : ServiceId.t;
  name : string;
  restart_policy : RestartPolicy.t;
  capabilities : list (Cap.t unit);
  dependencies : list ServiceId.t
}.
#[global] Instance rebuild_t : Rebuild t := λ d,
  mk (service_id d) (name d) (restart_policy d) (capabilities d) (dependencies d).
(* services_process_manager/src/descriptor.rs:40-49 ServiceDescriptor::new *)
Definition new (service_id : ServiceId.t) (name : string) (p : RestartPolicy.t) : t :=
  mk service_id name p [] [].
(* services_process_manager/src/descriptor.rs:51-55 ServiceDescriptor::with_capability *)
Definition with_capability (c : Cap.t unit) (d : t) : t := d <| capabilities ::= λ l, l ++ [c] |>.
(* services_process_manager/src/descriptor.rs:57-61 ServiceDescriptor::with_dependency *)
Definition with_dependency (s : ServiceId.t) (d : t) : t := d <| dependencies ::= λ l, l ++ [s] |>.
End ManagedDescriptor.

Module LifecycleState.
(* services_process_manager/src/lifecycle.rs:5-23 LifecycleState *)
Inductive t := Starting | Running | Stopping | Stopped | Failed | Restarting.
#[global] Instance eq_dec : EqDecision t.
Proof. solve_decision. Defined.
(* services_process_manager/src/lifecycle.rs:26-29 LifecycleState::is_terminal *)
Definition is_terminal (s : t) : bool := match s with Stopped | Failed => true | _ => false end.
(* services_process_manager/src/lifecycle.rs:31-34 LifecycleState::is_active *)
Definition is_active (s : t) : bool := match s with Starting | Running => true | _ => false end.
(* services_process_manager/src/lifecycle.rs:36-46 LifecycleState::as_str *)
Definition as_str (s : t) : string :=
  match s with
  | Starting => "Starting"
  | Running => "Running"
  | Stopping => "Stopping"
  | Stopped => "Stopped"
  | Failed => "Failed"
  | Restarting => "Restarting"
  end.
End LifecycleState.

Module CrashReason.
(* services_process_manager/src/lifecycle.rs:49-64 CrashReason *)
Inductive t :=
| Panic (msg : string) | ExitCode (code : Z) | Signal (sig : string)
| ResourceLimit (limit : string) | Timeout | Error (err : string).
(* services_process_manager/src/lifecycle.rs:67-77 CrashReason::description *)
Definition description (r : t) : string :=
  match r with
  | Panic msg => "Panic: " +:+ msg
  | ExitCode code => "Exit code: " +:+ pretty code
  | Signal sig => "Killed by signal: " +:+ sig
  | ResourceLimit limit => "Resource limit exceeded: " +:+ limit
  | Timeout => "Timeout"
  | Error err => "Error: " +:+ err
  end.
End CrashReason.

Module ServiceHandle.
(* services_process_manager/src/lifecycle.rs:80-93 ServiceHandle *)
Record t := mk {
  task_id : TaskId.t;
  state : LifecycleState.t;
  crash_reason : option CrashReason.t;
  restart_count : N
}.
#[global] Instance rebuild_t : Rebuild t := λ h,
  mk (task_id h) (state h) (crash_reason h) (restart_count h).
(* services_process_manager/src/lifecycle.rs:96-104 ServiceHandle::new *)
Definition new (task_id : TaskId.t) (state : LifecycleState.t) : t := mk task_id state None 0.
(* services_process_manager/src/lifecycle.rs:106-109 ServiceHandle::set_state *)
Definition set_state (s : LifecycleState.t) (h : t) : t := h <| state := s |>.
(* services_process_manager/src/lifecycle.rs:111-115 ServiceHandle::set_crash_reason *)
Definition set_crash_reason (r : CrashReason.t) (h : t) : t :=
  h <| crash_reason := Some r |> <| state := LifecycleState.Failed |>.
(* services_process_manager/src/lifecycle.rs:117-120 ServiceHandle::increment_restart_count *)
Definition increment_restart_count (h : t) : outcome t :=
  if restart_count h + 1 <? 2 ^ 32 then Return (h <| restart_count ::= λ n, n + 1 |>) else Panic.
(* services_process_manager/src/lifecycle.rs:122-135 ServiceHandle::status_summary *)
Definition status_summary (h : t) : string :=
  LifecycleState.as_str (state h)
  +:+ match crash_reason h with
      | Some r => " (" +:+ CrashReason.description r +:+ ")"
      | None => ""
      end
  +:+ (if 0 <? restart_count h then " [restarts: " +:+ pretty (restart_count h) +:+ "]" else "").
End ServiceHandle.

Module ProcessManagerError.
(* services_process_manager/src/manager.rs:15-25 ProcessManagerError *)
Inductive t :=
| AlreadyRegistered (id : ServiceId.t)
| ServiceNotFound (id : ServiceId.t)
| Kernel (msg : string).
(* services_process_manager/src/manager.rs:27-31 From<KernelError> for ProcessManagerError *)
Definition from_kernel (e : KernelError.t) : t := Kernel (display_kernel_error e).
End ProcessManagerError.

Module ManagedService.
(* services_process_manager/src/manager.rs:33-38 ManagedService *)
Record t := mk {
  descriptor : ManagedDescriptor.t;
  handle : ServiceHandle.t;
  restart_attempts : N
}.
#[global] Instance rebuild_t : Rebuild t := λ m, mk (descriptor m) (handle m) (restart_attempts m).
End ManagedService.

(** The trait [ExitNotificationSource]. *)
(* services_process_manager/src/manager.rs:10-13 ExitNotificationSource *)
Class ExitNotificationSource (S : Type) :=
  drain_exit_notifications : S → list ExitNotification.t * S.

Module ProcessManager.
(* services_process_manager/src/manager.rs:40-44 ProcessManager *)
Record t := mk {
  services : gmap ServiceId.t ManagedService.t;
  task_to_service : gmap TaskId.t ServiceId.t
}.
#[global] Instance rebuild_t : Rebuild t := λ p, mk (services p) (task_to_service p).
(* services_process_manager/src/manager.rs:47-52 ProcessManager::new *)
Definition new : t := mk ∅ ∅.
(* services_process_manager/src/manager.rs:88-91 ProcessManager::service_handle *)
Definition service_handle (id : ServiceId.t) (p : t) : option ServiceHandle.t :=
  ManagedService.handle <$> services p !! id.
(* services_process_manager/src/manager.rs:130-139 ProcessManager::should_restart *)
Definition should_restart (service : ManagedService.t) (reason : ExitReason.t) : bool :=
  match ManagedDescriptor.restart_policy (ManagedService.descriptor service) with
  | RestartPolicy.Never => false
  | RestartPolicy.Always => true
  | RestartPolicy.OnFailure => match reason with ExitReason.Normal => false | _ => true end
  | RestartPolicy.ExponentialBackoff max_attempts =>
      ManagedService.restart_attempts service <? max_attempts
  end.
(** The state that an exit leaves a service in. *)
(* services_process_manager/src/manager.rs:111-116 ProcessManager::handle_exits *)
Definition exit_state (reason : ExitReason.t) : LifecycleState.t :=
  match reason with ExitReason.Normal => LifecycleState.Stopped | _ => LifecycleState.Failed end.

Section with_kernel.
Context {K : Type} `{KernelApi K}.
(** What the kernel draws at the [n]-th spawn; the state counts the spawns. *)
Context (drawn : nat → Drawn.t).
Notation st := (K * nat)%type.

(** [kernel.spawn_task(..)?] for the task of a service. *)
Definition spawn (d : ManagedDescriptor.t) (s : st)
    : outcome (result TaskHandle.t ProcessManagerError.t * st) :=
  '(r, k) ← api_spawn_task (drawn s.2)
              (TaskDescriptor.mk (ManagedDescriptor.name d) (ManagedDescriptor.capabilities d)) s.1;
  Return (map_err ProcessManagerError.from_kernel r, (k, S s.2)).

(* services_process_manager/src/manager.rs:54-86 ProcessManager::start_service *)
Definition start_service (d : ManagedDescriptor.t) (p : t) (s : st)
    : outcome (result ServiceHandle.t ProcessManagerError.t * (t * st)) :=
  let id := ManagedDescriptor.service_id d in
  match services p !! id with
  | Some _ => Return (Err (ProcessManagerError.AlreadyRegistered id), (p, s))
  | None =>
      '(r, s) ← spawn d s;
      match r with
      | Err e => Return (Err e, (p, s))
      | Ok handle =>
          let h := ServiceHandle.new (TaskHandle.task_id handle) LifecycleState.Running in
          let p := p <| task_to_service ::= <[TaskHandle.task_id handle := id]> |> in
          Return (Ok h, (p <| services ::= <[id := ManagedService.mk d h 0]> |>, s))
      end
  end.
(** [restart_attempts] is a [u32] that saturates. *)
(* services_process_manager/src/manager.rs:141-155 ProcessManager::restart_service *)
Definition restart_service (service : ManagedService.t) (s : st)
    : outcome (result bool ProcessManagerError.t * (ManagedService.t * st)) :=
  let service := service <| ManagedService.restart_attempts ::= λ n, N.min (n + 1) (2 ^ 32 - 1) |>
                         <| ManagedService.handle ::= ServiceHandle.set_state LifecycleState.Restarting |> in
  '(r, s) ← spawn (ManagedService.descriptor service) s;
  match r with
  | Err e => Return (Err e, (service, s))
  | Ok handle =>
      Return (Ok true, (service <| ManagedService.handle :=
        ServiceHandle.new (TaskHandle.task_id handle) LifecycleState.Running |>, s))
  end.
(** One turn of the loop of [handle_exits]. *)
(* services_process_manager/src/manager.rs:99-125 ProcessManager::handle_exits *)
Definition handle_exit (n : ExitNotification.t) (p : t) (s : st)
    : outcome (result unit ProcessManagerError.t * (t * st)) :=
  match ExitNotification.task_id n with
  | None => Return (Ok tt, (p, s))
  | Some task_id =>
      match task_to_service p !! task_id with
      | None => Return (Ok tt, (p, s))
      | Some service_id =>
          match services p !! service_id with
          | None => Return (Ok tt, (p, s))
          | Some service =>
              let reason := ExitNotification.reason n in
              let service := service <| ManagedService.handle ::=
                               ServiceHandle.set_state (exit_state reason) |> in
              if should_restart service reason
              then
                '(r, (service, s)) ← restart_service service s;
                let p := p <| services ::= <[service_id := service]> |> in
                match r with
                | Err e => Return (Err e, (p, s))
                | Ok restarted =>
                    let p := if restarted : bool
                             then p <| task_to_service ::=
                                    <[ServiceHandle.task_id (ManagedService.handle service) := service_id]> |>
                             else p in
                    Return (Ok tt, (p, s))
                end
              else Return (Ok tt, (p <| services ::= <[service_id := service]> |>, s))
          end
      end
  end.
Fixpoint handle_all (ns : list ExitNotification.t) (p : t) (s : st)
    : outcome (result unit ProcessManagerError.t * (t * st)) :=
  match ns with
  | [] => Return (Ok tt, (p, s))
  | n :: ns =>
      '(r, (p, s)) ← handle_exit n p s;
      match r with
      | Err e => Return (Err e, (p, s))
      | Ok _ => handle_all ns p s
      end
  end.
(* services_process_manager/src/manager.rs:93-128 ProcessManager::handle_exits *)
Definition handle_exits `{ExitNotificationSource Src} (source : Src) (p : t) (s : st)
    : outcome (result unit ProcessManagerError.t * (Src * (t * st))) :=
  let '(ns, source) := drain_exit_notifications source in
  '(r, ps) ← handle_all ns p s;
  Return (r, (source, ps)).
End with_kernel.
End ProcessManager.

Module ProcessInfo.
(* services_process_manager/src/process_info.rs:10-25 ProcessInfo *)
Record t := mk {
  service_id : ServiceId.t;
  task_id : TaskId.t;
  name : string;
  state : LifecycleState.t;
  status : string;
  restart_policy : RestartPolicy.t
}.
(* services_process_manager/src/process_info.rs:28-43 ProcessInfo::new *)
Definition new (service_id : ServiceId.t) (name : string) (handle : ServiceHandle.t)
    (p : RestartPolicy.t) : t :=
  mk service_id (ServiceHandle.task_id handle) name (ServiceHandle.state handle)
     (ServiceHandle.status_summary handle) p.
End ProcessInfo.

Module ProcessList.
(* services_process_manager/src/process_info.rs:59-63 ProcessList *)
Record t := mk { processes : gmap ServiceId.t ProcessInfo.t }.
#[global] Instance rebuild_t : Rebuild t := λ p, mk (processes p).
(* services_process_manager/src/process_info.rs:66-71 ProcessList::new *)
Definition new : t := mk ∅.
(* services_process_manager/src/process_info.rs:73-76 ProcessList::add *)
Definition add (id : ServiceId.t) (info : ProcessInfo.t) (p : t) : t :=
  p <| processes ::= <[id := info]> |>.
(* services_process_manager/src/process_info.rs:78-81 ProcessList::remove *)
Definition remove (id : ServiceId.t) (p : t) : option ProcessInfo.t * t :=
  (processes p !! id, p <| processes ::= delete id |>).
(* services_process_manager/src/process_info.rs:83-86 ProcessList::update *)
Definition update (id : ServiceId.t) (info : ProcessInfo.t) (p : t) : t :=
  p <| processes ::= <[id := info]> |>.
(** [sort_by(|a, b| a.name.cmp(&b.name))]: a stable sort by name. *)
Definition name_le (a b : ProcessInfo.t) : Prop :=
  String.leb (ProcessInfo.name a) (ProcessInfo.name b) = true.
#[global] Instance name_le_dec : RelDecision name_le.
Proof. intros a b. unfold name_le. apply _. Defined.
(* services_process_manager/src/process_info.rs:88-93 ProcessList::list_all *)
Definition list_all `{HashOrder} (p : t) : list ProcessInfo.t :=
  merge_sort name_le (hm_values (processes p)).
(* services_process_manager/src/process_info.rs:95-104 ProcessList::list_by_state *)
Definition list_by_state `{HashOrder} (state : LifecycleState.t) (p : t) : list ProcessInfo.t :=
  merge_sort name_le (filter (λ i, ProcessInfo.state i = state) (hm_values (processes p))).
(* services_process_manager/src/process_info.rs:106-109 ProcessList::get *)
Definition get (id : ServiceId.t) (p : t) : option ProcessInfo.t := processes p !! id.
(* services_process_manager/src/process_info.rs:111-114 ProcessList::get_by_name *)
Definition get_by_name `{HashOrder} (name : string) (p : t) : option ProcessInfo.t :=
  snd <$> list_find (λ i, ProcessInfo.name i = name) (hm_values (processes p)).
End ProcessList.

Module KillSignal.
(* services_process_manager/src/process_info.rs:139-148 KillSignal *)
Inductive t := Terminate | Kill | Interrupt.
(* services_process_manager/src/process_info.rs:151-158 KillSignal::name *)
Definition name (s : t) : string :=
  match s with Terminate => "TERM" | Kill => "KILL" | Interrupt => "INT" end.
(* services_process_manager/src/process_info.rs:160-163 KillSignal::is_forceful *)
Definition is_forceful (s : t) : bool := match s with Kill => true | _ => false end.
End KillSignal.

Module KillResult.
(* services_process_manager/src/process_info.rs:166-183 KillResult *)
Inductive t :=
| Success (service_id : ServiceId.t) (signal : KillSignal.t)
| NotFound (service_id : ServiceId.t)
| AlreadyStopped (service_id : ServiceId.t)
| Failed (service_id : ServiceId.t) (reason : string).
(* services_process_manager/src/process_info.rs:185-202 Display for KillResult *)
Definition display `{UuidFormat} (r : t) : string :=
  match r with
  | Success id signal => "Sent " +:+ KillSignal.name signal +:+ " to service " +:+ ServiceId.display id
  | NotFound id => "Service " +:+ ServiceId.display id +:+ " not found"
  | AlreadyStopped id => "Service " +:+ ServiceId.display id +:+ " is already stopped"
  | Failed id reason => "Failed to kill service " +:+ ServiceId.display id +:+ ": " +:+ reason
  end.
End KillResult.
