(* ===== verification/JobsProps.v ===== *)
(** * Properties of the job scheduler and the process manager

    The job scheduler implements three first-in first-out lanes, one per priority, over
    any history; every scheduled job is in exactly one place; jobs that end do end.  The
    process manager starts a task again only when the policy of the service says so. *)

From S2P Require Import Prelude CoreTypes Identity SyscallGate Pipeline Jobs.
Open Scope N_scope.

(** ** Histories of the job scheduler *)
Module JobOp.
(** A client's calls.  [JobDescriptor::new] is the only way to build a job. *)
Inductive t :=
| Schedule (id : JobId.t) (name : string) (priority : JobPriority.t) (executor : JobFn.t)
| Cancel (id : JobId.t)
| Tick.
Definition run (s : JobScheduler.t) (o : t) : outcome JobScheduler.t :=
  match o with
  | Schedule id name p f => Return (JobScheduler.schedule_job (JobDescriptor.new id name p f) s).2
  | Cancel id => Return (JobScheduler.cancel_job id s).2
  | Tick => JobScheduler.tick s
  end.
End JobOp.

(** ** The abstract scheduler: one queue per priority *)
Module JobLanes.
Record t := mk {
  high : list JobDescriptor.t;
  normal : list JobDescriptor.t;
  low : list JobDescriptor.t;
  active : option JobDescriptor.t;
  done : list JobDescriptor.t;
  now : N
}.
#[global] Instance rebuild_t : Rebuild t := λ q,
  mk (high q) (normal q) (low q) (active q) (done q) (now q).
Definition empty : t := mk [] [] [] None [] 0.
Definition waiting (q : t) : list JobDescriptor.t := high q ++ normal q ++ low q.

Definition enqueue (j : JobDescriptor.t) (q : t) : t :=
  match JobDescriptor.priority j with
  | JobPriority.High => q <| high ::= λ l, l ++ [j] |>
  | JobPriority.Normal => q <| normal ::= λ l, l ++ [j] |>
  | JobPriority.Low => q <| low ::= λ l, l ++ [j] |>
  end.
Definition dequeue (q : t) : option (JobDescriptor.t * t) :=
  match high q, normal q, low q with
  | j :: l, _, _ => Some (j, q <| high := l |>)
  | [], j :: l, _ => Some (j, q <| normal := l |>)
  | [], [], j :: l => Some (j, q <| low := l |>)
  | [], [], [] => None
  end.

(** Removing the first job with an identifier. *)
Fixpoint take_out (id : JobId.t) (l : list JobDescriptor.t)
    : option (JobDescriptor.t * list JobDescriptor.t) :=
  match l with
  | [] => None
  | j :: l => if decide (JobDescriptor.id j = id) then Some (j, l)
              else (λ '(x, r), (x, j :: r)) <$> take_out id l
  end.
Definition retract (id : JobId.t) (q : t) : option (JobDescriptor.t * t) :=
  match take_out id (high q), take_out id (normal q), take_out id (low q) with
  | Some (j, l), _, _ => Some (j, q <| high := l |>)
  | None, Some (j, l), _ => Some (j, q <| normal := l |>)
  | None, None, Some (j, l) => Some (j, q <| low := l |>)
  | None, None, None => None
  end.

(** What one turn makes of a job. *)
Definition advance (now : N) (j : JobDescriptor.t) : JobDescriptor.t :=
  let ticks := JobDescriptor.ticks_executed j + 1 in
  let j := j <| JobDescriptor.ticks_executed := ticks |> in
  match JobDescriptor.executor j with
  | None => j
  | Some f =>
      match JobFn.call f (JobContext.new now ticks) with
      | (JobResult.Completed, _) =>
          j <| JobDescriptor.status := JobStatus.Completed |>
            <| JobDescriptor.progress := 100 |> <| JobDescriptor.executor := None |>
      | (JobResult.Yielded, f) =>
          j <| JobDescriptor.status := JobStatus.Yielded |> <| JobDescriptor.executor := Some f |>
      | (JobResult.Failed e, _) =>
          j <| JobDescriptor.status := JobStatus.Failed |>
            <| JobDescriptor.error := Some e |> <| JobDescriptor.executor := None |>
      end
  end.
(** A job that asks for another turn keeps its turn; any other is done. *)
Definition settle (j : JobDescriptor.t) (q : t) : t :=
  if decide (JobDescriptor.status j = JobStatus.Yielded)
  then q <| active := Some j |> else q <| active := None |> <| done ::= λ l, l ++ [j] |>.
Definition cancelled (j : JobDescriptor.t) : JobDescriptor.t :=
  j <| JobDescriptor.status := JobStatus.Cancelled |> <| JobDescriptor.executor := None |>.

Definition step (q : t) (o : JobOp.t) : t :=
  match o with
  | JobOp.Schedule id name p f => enqueue (JobDescriptor.new id name p f) q
  | JobOp.Cancel id =>
      match retract id q with
      | Some (j, q) => q <| done ::= λ l, l ++ [cancelled j] |>
      | None => q
      end
  | JobOp.Tick =>
      let q := q <| now ::= λ n, n + 1 |> in
      match active q with
      | Some j => settle (advance (now q) j) q
      | None =>
          match dequeue q with
          | Some (j, q) => settle (advance (now q) j) q
          | None => q
          end
      end
  end.
(** Every job the scheduler knows. *)
Definition all_jobs (q : t) : list JobDescriptor.t := option_list (active q) ++ waiting q ++ done q.
End JobLanes.

Module JobSpec.
(** [scheduler] and its abstraction. *)
Definition abs (s : JobScheduler.t) (q : JobLanes.t) : Prop :=
  JobScheduler.pending_jobs s = JobLanes.waiting q ∧
  JobScheduler.running_job s = JobLanes.active q ∧
  JobScheduler.completed_jobs s = JobLanes.done q ∧
  JobScheduler.tick_count s = JobLanes.now q.

(** The jobs that can still run hold their function, and no job has run longer than the
    scheduler. *)
Definition live (n : N) (j : JobDescriptor.t) : Prop :=
  is_Some (JobDescriptor.executor j) ∧ JobDescriptor.ticks_executed j ≤ n.
Definition of_priority (p : JobPriority.t) (j : JobDescriptor.t) : Prop :=
  JobDescriptor.priority j = p.
Record lanes_ok (q : JobLanes.t) : Prop := {
  lanes_high : Forall (of_priority JobPriority.High) (JobLanes.high q);
  lanes_normal : Forall (of_priority JobPriority.Normal) (JobLanes.normal q);
  lanes_low : Forall (of_priority JobPriority.Low) (JobLanes.low q)
}.
Definition all_live (q : JobLanes.t) : Prop :=
  Forall (live (JobLanes.now q)) (option_list (JobLanes.active q) ++ JobLanes.waiting q).

(** *** Lists *)
Lemma vec_insert_before {A} (p : A → bool) x (l1 l2 : list A) :
  Forall (λ a, p a = false) l1 → Forall (λ a, p a = true) l2 →
  vec_insert (default (length (l1 ++ l2)) (JobScheduler.position p (l1 ++ l2))) x (l1 ++ l2)
  = l1 ++ x :: l2.
Proof.
  intros H1 H2. unfold JobScheduler.position, vec_insert.
  rewrite list_find_app_r by
    (apply list_find_None; eapply Forall_impl; [exact H1|intros a; simpl; congruence]).
  destruct l2 as [|b l2]; simpl.
  - rewrite !app_nil_r, take_ge, drop_ge by done. done.
  - inversion H2 as [|?? Hb ?]; subst. rewrite decide_True by done. simpl.
    rewrite take_app_length, drop_app_length. done.
Qed.

Lemma take_out_find id l :
  JobLanes.take_out id l
  = match list_find (λ j, JobDescriptor.id j = id) l with
    | Some (i, j) => Some (j, delete i l)
    | None => None
    end.
Proof.
  induction l as [|j l IH]; simpl; [done|].
  destruct (decide (JobDescriptor.id j = id)); [done|]. rewrite IH.
  by destruct (list_find _ l) as [[i x]|].
Qed.

Lemma take_out_app id l1 l2 :
  JobLanes.take_out id (l1 ++ l2)
  = match JobLanes.take_out id l1 with
    | Some (j, l) => Some (j, l ++ l2)
    | None => (λ '(j, l), (j, l1 ++ l)) <$> JobLanes.take_out id l2
    end.
Proof.
  induction l1 as [|j l1 IH]; simpl; [by destruct (JobLanes.take_out id l2) as [[]|]|].
  destruct (decide _); [done|]. rewrite IH.
  destruct (JobLanes.take_out id l1) as [[]|], (JobLanes.take_out id l2) as [[]|]; done.
Qed.

Lemma take_out_spec id l j r :
  JobLanes.take_out id l = Some (j, r) → l ≡ₚ j :: r ∧ JobDescriptor.id j = id.
Proof.
  revert r. induction l as [|x l IH]; intros r; simpl; [done|].
  destruct (decide _) as [E|]; [naive_solver|].
  destruct (JobLanes.take_out id l) as [[y r']|]; [|done]. intros [= -> <-].
  destruct (IH _ eq_refl) as [P E]. split; [|done]. rewrite P. constructor.
Qed.

(** *** The lanes *)
Lemma waiting_dequeue q :
  match JobLanes.dequeue q with
  | Some (j, q') => JobLanes.waiting q = j :: JobLanes.waiting q'
  | None => JobLanes.waiting q = []
  end.
Proof.
  unfold JobLanes.dequeue, JobLanes.waiting.
  destruct (JobLanes.high q) eqn:E1, (JobLanes.normal q) eqn:E2, (JobLanes.low q) eqn:E3; simpl;
    by rewrite ?E1, ?E2, ?E3.
Qed.

Lemma waiting_retract id q :
  match JobLanes.retract id q with
  | Some (j, q') => JobLanes.take_out id (JobLanes.waiting q) = Some (j, JobLanes.waiting q')
  | None => JobLanes.take_out id (JobLanes.waiting q) = None
  end.
Proof.
  unfold JobLanes.retract, JobLanes.waiting. rewrite !take_out_app.
  destruct (JobLanes.take_out id (JobLanes.high q)) as [[]|]; [done|].
  destruct (JobLanes.take_out id (JobLanes.normal q)) as [[]|]; [done|].
  by destruct (JobLanes.take_out id (JobLanes.low q)) as [[]|].
Qed.

Lemma waiting_enqueue j q : JobLanes.waiting (JobLanes.enqueue j q) ≡ₚ j :: JobLanes.waiting q.
Proof.
  unfold JobLanes.enqueue, JobLanes.waiting.
  destruct (JobDescriptor.priority j); simpl; solve_Permutation.
Qed.

Lemma dequeue_fields q j q' :
  JobLanes.dequeue q = Some (j, q') → lanes_ok q →
  lanes_ok q' ∧ JobLanes.active q' = JobLanes.active q ∧ JobLanes.done q' = JobLanes.done q ∧
  JobLanes.now q' = JobLanes.now q.
Proof.
  unfold JobLanes.dequeue. intros E [Hh Hn Hl].
  destruct (JobLanes.high q) eqn:?, (JobLanes.normal q) eqn:?, (JobLanes.low q) eqn:?;
    simplify_eq/=; (split; [|done]); split; simpl; try congruence;
    repeat match goal with H : Forall _ (_ :: _) |- _ => inversion_clear H end; try done;
    congruence.
Qed.

Lemma take_out_Forall (P : JobDescriptor.t → Prop) id l j r :
  JobLanes.take_out id l = Some (j, r) → Forall P l → Forall P r.
Proof. intros [E _]%take_out_spec. rewrite E. by inversion 1. Qed.

Lemma retract_fields id q j q' :
  JobLanes.retract id q = Some (j, q') → lanes_ok q →
  lanes_ok q' ∧ JobLanes.active q' = JobLanes.active q ∧ JobLanes.done q' = JobLanes.done q ∧
  JobLanes.now q' = JobLanes.now q.
Proof.
  unfold JobLanes.retract. intros E [Hh Hn Hl].
  destruct (JobLanes.take_out id (JobLanes.high q)) as [[]|] eqn:E1,
    (JobLanes.take_out id (JobLanes.normal q)) as [[]|] eqn:E2,
    (JobLanes.take_out id (JobLanes.low q)) as [[]|] eqn:E3;
    simplify_eq/=; (split; [|done]); split; simpl; eauto using take_out_Forall.
Qed.

Lemma enqueue_fields j q :
  lanes_ok q →
  lanes_ok (JobLanes.enqueue j q) ∧
  JobLanes.active (JobLanes.enqueue j q) = JobLanes.active q ∧
  JobLanes.done (JobLanes.enqueue j q) = JobLanes.done q ∧
  JobLanes.now (JobLanes.enqueue j q) = JobLanes.now q.
Proof.
  intros [Hh Hn Hl]. unfold JobLanes.enqueue.
  destruct (JobDescriptor.priority j) eqn:E; (split; [|done]); split; simpl; try done;
    (apply Forall_app; split; [done|]); by constructor.
Qed.

(** Inserting before the first job of a lower priority is appending to the own lane. *)
Lemma schedule_is_enqueue j s q :
  lanes_ok q → JobScheduler.pending_jobs s = JobLanes.waiting q →
  JobScheduler.pending_jobs (JobScheduler.schedule_job j s).2
  = JobLanes.waiting (JobLanes.enqueue j q).
Proof.
  intros [Hh Hn Hl] E. unfold JobScheduler.schedule_job, JobLanes.enqueue. cbn.
  rewrite E. unfold JobLanes.waiting.
  destruct (JobDescriptor.priority j) eqn:Ej; cbn.
  - replace (JobLanes.high q ++ JobLanes.normal q ++ JobLanes.low q)
      with ((JobLanes.high q ++ JobLanes.normal q ++ JobLanes.low q) ++ [])
      by apply app_nil_r.
    rewrite vec_insert_before; [by rewrite <- !app_assoc|..|done].
    rewrite !Forall_app. split_and!; (eapply Forall_impl; [eassumption|]); by intros ? ->.
  - rewrite (app_assoc (JobLanes.high q)), vec_insert_before; [by rewrite <- !app_assoc|..].
    + rewrite !Forall_app. split; (eapply Forall_impl; [eassumption|]); by intros ? ->.
    + eapply Forall_impl; [eassumption|]. by intros ? ->.
  - rewrite vec_insert_before; [by rewrite <- !app_assoc|..].
    + eapply Forall_impl; [eassumption|]. by intros ? ->.
    + rewrite !Forall_app. split; (eapply Forall_impl; [eassumption|]); by intros ? ->.
Qed.

(** *** One turn *)
Lemma exec_is_settle j b s q n :
  live n j → n + 1 ≤ u64_max → JobLanes.now q = JobScheduler.tick_count s →
  JobScheduler.running_job s = None → JobScheduler.pending_jobs s = JobLanes.waiting q →
  JobScheduler.completed_jobs s = JobLanes.done q →
  ∃ s', JobScheduler.execute_and_handle_job j b s = Return s' ∧
        abs s' (JobLanes.settle (JobLanes.advance (JobLanes.now q) j) q).
Proof.
  intros [[f Ef] Hj] Hn Et Er Ep Ec.
  assert (add_u64 (JobDescriptor.ticks_executed j) 1
          = Return (JobDescriptor.ticks_executed j + 1)) as Ea by (apply add_u64_Return; split; [done|lia]).
  unfold JobScheduler.execute_and_handle_job, JobLanes.advance.
  destruct b; cbn; rewrite Ea; cbn; rewrite Ef, <- Et;
    destruct (JobFn.call f _) as [[| |e] f']; (eexists; split; [reflexivity|]);
    unfold JobLanes.settle; cbn; repeat split; cbn;
    first [done | exact Ep | by rewrite Ec].
Qed.

Lemma advance_live n now j :
  live n j → JobDescriptor.status (JobLanes.advance now j) = JobStatus.Yielded →
  live (n + 1) (JobLanes.advance now j).
Proof.
  intros [[f Ef] Hj]. unfold JobLanes.advance. cbn. rewrite Ef.
  destruct (JobFn.call f _) as [[| |e] f']; cbn; [done| |done].
  intros _. split; cbn; [eauto|lia].
Qed.

Lemma advance_id now j : JobDescriptor.id (JobLanes.advance now j) = JobDescriptor.id j.
Proof.
  unfold JobLanes.advance. cbn. destruct (JobDescriptor.executor j); [|done].
  by destruct (JobFn.call _ _) as [[| |e] f'].
Qed.

Lemma live_mono n m j : n ≤ m → live n j → live m j.
Proof. intros ? [? ?]. split; [done|lia]. Qed.

Lemma settle_live n j q :
  live n j → Forall (live (n + 1)) (JobLanes.waiting q) → JobLanes.now q = n + 1 →
  all_live (JobLanes.settle (JobLanes.advance (n + 1) j) q).
Proof.
  intros Hj Hw En. unfold JobLanes.settle, all_live.
  destruct (decide _) as [E|]; cbn; fold (JobLanes.waiting q); rewrite En; [|done].
  constructor; [by apply advance_live|done].
Qed.

Lemma settle_lanes j q : lanes_ok q → lanes_ok (JobLanes.settle j q).
Proof. intros [???]. unfold JobLanes.settle. by destruct (decide _). Qed.

Lemma settle_now j q : JobLanes.now (JobLanes.settle j q) = JobLanes.now q.
Proof. unfold JobLanes.settle. by destruct (decide _). Qed.

(** The state of the two schedulers after the same calls. *)
Record related (s : JobScheduler.t) (q : JobLanes.t) : Prop := {
  related_abs : abs s q;
  related_lanes : lanes_ok q;
  related_live : all_live q
}.

Lemma tick_related s q :
  related s q → JobLanes.now q < u64_max →
  ∃ s', JobScheduler.tick s = Return s' ∧ related s' (JobLanes.step q JobOp.Tick) ∧
        JobLanes.now (JobLanes.step q JobOp.Tick) = JobLanes.now q + 1.
Proof.
  intros [(Ep & Er & Ec & Et) [Hh Hn Hl] Hv] Hnow.
  assert (add_u64 (JobScheduler.tick_count s) 1 = Return (JobLanes.now q + 1)) as Ea
    by (rewrite Et; apply add_u64_Return; split; [done|lia]).
  unfold JobScheduler.tick. rewrite Ea. cbn. rewrite Er, Ep.
  set (q1 := q <| JobLanes.now ::= λ n, n + 1 |>).
  assert (lanes_ok q1) as Hq1 by done.
  assert (Forall (live (JobLanes.now q1)) (JobLanes.waiting q1)) as Hw.
  { apply Forall_app in Hv as [_ Hw]. eapply Forall_impl; [exact Hw|].
    intros j. apply live_mono. simpl. lia. }
  unfold all_live in Hv. destruct (JobLanes.active q) as [j|] eqn:Eact.
  - simpl in Hv. apply Forall_cons in Hv as [Hj _].
    destruct (exec_is_settle j true (s <| JobScheduler.tick_count := JobLanes.now q + 1 |>
      <| JobScheduler.running_job := None |>) q1 (JobLanes.now q)) as (s' & Es & Ha); try done; [lia|].
    exists s'. split; [done|]. split; [split; [exact Ha|..]|apply settle_now].
    + by apply settle_lanes.
    + by apply settle_live.
  - pose proof (waiting_dequeue q1) as Hd.
    destruct (JobLanes.dequeue q1) as [[j q2]|] eqn:Ed.
    + destruct (dequeue_fields _ _ _ Ed Hq1) as (Hq2 & Ea2 & Ec2 & En2).
      rewrite <- (eq_refl : JobLanes.waiting q1 = JobLanes.waiting q), Hd in *.
      simpl in Hv. apply Forall_cons in Hv as [Hj _]. apply Forall_cons in Hw as [_ Hw].
      change (JobLanes.now q1) with (JobLanes.now q + 1) in *.
      destruct (exec_is_settle j false (s <| JobScheduler.tick_count := JobLanes.now q + 1 |>
        <| JobScheduler.pending_jobs := JobLanes.waiting q2 |>) q2 (JobLanes.now q))
        as (s' & Es & Ha); try done; [lia|by rewrite Ec2|].
      exists s'. split; [done|]. rewrite settle_now, En2.
      split; [split; [by rewrite En2 in Ha|..]|done].
      * by apply settle_lanes.
      * by apply settle_live.
    + rewrite <- (eq_refl : JobLanes.waiting q1 = JobLanes.waiting q), Hd.
      eexists. split; [reflexivity|]. split; [|done]. split; [split_and!; cbn; first [done|congruence]|done|].
      unfold all_live. cbn [q1 option_list JobLanes.active]. by rewrite (Eact : JobLanes.active q1 = _).
Qed.

Lemma schedule_related s q id name p f :
  related s q → related (JobScheduler.schedule_job (JobDescriptor.new id name p f) s).2
                        (JobLanes.step q (JobOp.Schedule id name p f)).
Proof.
  intros [(Ep & Er & Ec & Et) Hq Hv]. set (j := JobDescriptor.new id name p f).
  destruct (enqueue_fields j q Hq) as (Hq' & Ea & Ed & En).
  split; [split_and!|done|]; cbn [JobLanes.step]; fold j.
  - by apply schedule_is_enqueue.
  - by rewrite Ea.
  - by rewrite Ed.
  - by rewrite En.
  - unfold all_live in *. rewrite Ea, En, waiting_enqueue. apply Forall_app in Hv as [Ha Hw].
    apply Forall_app. split; [done|]. constructor; [|done]. split; cbn; [eauto|lia].
Qed.

Lemma cancel_related s q id :
  related s q → related (JobScheduler.cancel_job id s).2 (JobLanes.step q (JobOp.Cancel id)).
Proof.
  intros [(Ep & Er & Ec & Et) Hq Hv]. unfold JobScheduler.cancel_job. cbn [JobLanes.step].
  pose proof (waiting_retract id q) as Hr. rewrite take_out_find, <- Ep in Hr.
  destruct (JobLanes.retract id q) as [[j q']|] eqn:E.
  - destruct (list_find _ _) as [[i j']|] eqn:Ef; [|done]. simplify_eq.
    destruct (retract_fields _ _ _ _ E Hq) as (Hq' & Ea & Ed & En).
    split; [split_and!|by destruct Hq'|]; cbn.
    + done.
    + by rewrite Ea.
    + by rewrite Ec, Ed.
    + by rewrite En.
    + unfold all_live in *. cbn. rewrite Ea, En. apply Forall_app in Hv as [Ha Hw].
      apply Forall_app. split; [done|]. pose proof (waiting_retract id q) as Ht. rewrite E in Ht.
      by eapply take_out_Forall.
  - by destruct (list_find _ _) as [[i j']|].
Qed.

Lemma new_related : related JobScheduler.new JobLanes.empty.
Proof. split; [done|split; constructor|constructor]. Qed.

Lemma step_now q o : lanes_ok q → JobLanes.now (JobLanes.step q o) ≤ JobLanes.now q + 1.
Proof.
  intros Hq. destruct o as [id name p f|id|]; cbn.
  - destruct (enqueue_fields (JobDescriptor.new id name p f) q Hq) as (_ & _ & _ & ->). lia.
  - destruct (JobLanes.retract id q) as [[j q']|] eqn:E; [|lia].
    destruct (retract_fields _ _ _ _ E Hq) as (_ & _ & _ & En). cbn. lia.
  - destruct (JobLanes.active q); [by rewrite settle_now|].
    destruct (JobLanes.dequeue _) as [[j q']|] eqn:E; [|done].
    edestruct dequeue_fields as (_ & _ & _ & En); [exact E|by destruct Hq|].
    rewrite settle_now, En. done.
Qed.

Lemma step_related s q o :
  related s q → JobLanes.now q < u64_max →
  ∃ s', JobOp.run s o = Return s' ∧ related s' (JobLanes.step q o).
Proof.
  intros H Hn. destruct o as [id name p f|id|]; cbn [JobOp.run].
  - eexists. split; [done|]. by apply schedule_related.
  - eexists. split; [done|]. by apply cancel_related.
  - destruct (tick_related s q H Hn) as (s' & ? & ? & _). eauto.
Qed.

Lemma history_related s q ops :
  related s q → JobLanes.now q + len ops ≤ u64_max →
  ∃ s', fold_outcome JobOp.run ops s = Return s' ∧ related s' (foldl JobLanes.step q ops) ∧
        JobLanes.now (foldl JobLanes.step q ops) ≤ JobLanes.now q + len ops.
Proof.
  revert s q. induction ops as [|o ops IH]; intros s q H Hn; simpl.
  - exists s. split_and!; [done..|]. unfold len. simpl. lia.
  - unfold len in *. simpl in Hn.
    destruct (step_related s q o H) as (s1 & E1 & H1); [lia|]. rewrite E1. simpl.
    pose proof (step_now q o (related_lanes _ _ H)).
    destruct (IH s1 (JobLanes.step q o)) as (s' & E' & H' & Hn'); [done|lia|].
    exists s'. split_and!; [done..|]. lia.
Qed.

(** C26: The job scheduler implements one first-in first-out queue per priority.  After any
    history of fewer than 2^64 calls the single sorted queue of the code is the concatenation
    of the three lanes of the abstract scheduler, high before normal before low, with the
    same running job, the same finished jobs in the same order and the same clock; in
    particular no call of the history panics. *)
Theorem job_scheduler_is_priority_fifo (ops : list JobOp.t) :
  len ops ≤ u64_max →
  ∃ s, fold_outcome JobOp.run ops JobScheduler.new = Return s ∧
       let q := foldl JobLanes.step JobLanes.empty ops in
       JobScheduler.pending_jobs s = JobLanes.high q ++ JobLanes.normal q ++ JobLanes.low q ∧
       JobScheduler.running_job s = JobLanes.active q ∧
       JobScheduler.completed_jobs s = JobLanes.done q ∧
       JobScheduler.tick_count s = JobLanes.now q.
Proof.
  intros Hl. destruct (history_related _ _ ops new_related) as (s & E & H & _); [done|].
  exists s. split; [done|]. apply H.
Qed.

(** A job that runs for [n] turns. *)
Definition turns (n : N) : JobFn.t :=
  JobFn.mk N n (λ _ k, if k <=? 1 then (JobResult.Completed, 0) else (JobResult.Yielded, k - 1)).
Definition sample_history : list JobOp.t :=
  [JobOp.Schedule (JobId.from_uuid 1) "low" JobPriority.Low (turns 1);
   JobOp.Schedule (JobId.from_uuid 2) "normal" JobPriority.Normal (turns 2);
   JobOp.Tick;
   JobOp.Schedule (JobId.from_uuid 3) "high" JobPriority.High (turns 1);
   JobOp.Schedule (JobId.from_uuid 4) "low" JobPriority.Low (turns 1);
   JobOp.Tick; JobOp.Cancel (JobId.from_uuid 1); JobOp.Tick].
Lemma job_scheduler_is_priority_fifo_witness :
  (∃ s, fold_outcome JobOp.run sample_history JobScheduler.new = Return s ∧
   JobScheduler.pending_jobs s = JobLanes.waiting (foldl JobLanes.step JobLanes.empty sample_history)) ∧
  (JobDescriptor.id <$> JobLanes.done (foldl JobLanes.step JobLanes.empty sample_history))
  = [JobId.from_uuid 2; JobId.from_uuid 1; JobId.from_uuid 3].
Proof.
  split; [|vm_compute; reflexivity].
  destruct (job_scheduler_is_priority_fifo sample_history) as (s & E & H & _); [vm_compute; discriminate|].
  exists s. split; [exact E|exact H].
Defined.

(** *** Conservation *)
Definition scheduled (ops : list JobOp.t) : list JobId.t :=
  omap (λ o, match o with JobOp.Schedule id _ _ _ => Some id | _ => None end) ops.
Definition ended (j : JobDescriptor.t) : Prop :=
  JobDescriptor.executor j = None ∧
  JobDescriptor.status j ∈ [JobStatus.Completed; JobStatus.Failed; JobStatus.Cancelled].

Lemma settle_all now j q :
  JobLanes.active q = None →
  JobDescriptor.id <$> JobLanes.all_jobs (JobLanes.settle (JobLanes.advance now j) q)
  ≡ₚ JobDescriptor.id j :: (JobDescriptor.id <$> JobLanes.all_jobs q).
Proof.
  intros Ea. unfold JobLanes.all_jobs, JobLanes.settle.
  destruct (decide _); cbn; fold (JobLanes.waiting q); rewrite ?Ea; cbn; rewrite ?advance_id; [done|].
  rewrite !fmap_app. cbn. rewrite advance_id. solve_Permutation.
Qed.

Lemma settle_active j q a : JobLanes.settle j (q <| JobLanes.active := a |>) = JobLanes.settle j q.
Proof. unfold JobLanes.settle. by destruct (decide _). Qed.

Lemma step_all q o :
  lanes_ok q →
  JobDescriptor.id <$> JobLanes.all_jobs (JobLanes.step q o)
  ≡ₚ scheduled [o] ++ (JobDescriptor.id <$> JobLanes.all_jobs q).
Proof.
  intros Hq. destruct o as [id name p f|id|]; cbn [JobLanes.step scheduled omap list_omap].
  - set (j := JobDescriptor.new id name p f).
    destruct (enqueue_fields j q Hq) as (_ & Ea & Ed & _).
    unfold JobLanes.all_jobs. rewrite Ea, Ed, waiting_enqueue, !fmap_app. cbn. solve_Permutation.
  - pose proof (waiting_retract id q) as Hr.
    destruct (JobLanes.retract id q) as [[j q']|] eqn:E; [|done].
    destruct (retract_fields _ _ _ _ E Hq) as (_ & Ea & Ed & _).
    apply take_out_spec in Hr as [P _]. unfold JobLanes.all_jobs at 2. rewrite P.
    unfold JobLanes.all_jobs. cbn. fold (JobLanes.waiting q'). rewrite Ea, Ed, !fmap_app. cbn.
    rewrite fmap_app. cbn. solve_Permutation.
  - cbn. set (q1 := q <| JobLanes.now ::= λ n, n + 1 |>).
    destruct (JobLanes.active q) as [j|] eqn:Ea.
    + rewrite <- (settle_active _ q1 None), settle_all by done.
      unfold JobLanes.all_jobs. rewrite Ea. done.
    + pose proof (waiting_dequeue q1) as Hd.
      destruct (JobLanes.dequeue q1) as [[j q2]|] eqn:E; [|done].
      edestruct (dequeue_fields q1) as (_ & Ea2 & Ed2 & _); [done|by destruct Hq|].
      rewrite settle_all by (by rewrite Ea2). unfold JobLanes.all_jobs. rewrite Ea2, Ed2.
      rewrite <- (eq_refl : JobLanes.waiting q1 = JobLanes.waiting q), Hd.
      cbn. rewrite Ea. done.
Qed.

Lemma related_history_lanes s q ops :
  related s q → JobLanes.now q + len ops ≤ u64_max → lanes_ok (foldl JobLanes.step q ops).
Proof. intros H Hn. destruct (history_related _ _ ops H Hn) as (s' & _ & H' & _). apply H'. Qed.

(** The status says where a job is. *)
Definition placed (q : JobLanes.t) : Prop :=
  Forall (λ j, JobDescriptor.status j = JobStatus.Pending) (JobLanes.waiting q) ∧
  Forall (λ j, JobDescriptor.status j = JobStatus.Yielded) (option_list (JobLanes.active q)) ∧
  Forall ended (JobLanes.done q).

Lemma advance_ended n now j :
  live n j → JobDescriptor.status (JobLanes.advance now j) ≠ JobStatus.Yielded →
  ended (JobLanes.advance now j).
Proof.
  intros [[f Ef] _]. unfold JobLanes.advance, ended. cbn. rewrite Ef.
  destruct (JobFn.call f _) as [[| |e] f']; cbn; [|done|]; intros _; (split; [done|]); set_solver.
Qed.

Lemma settle_placed n now j q : live n j → placed q → placed (JobLanes.settle (JobLanes.advance now j) q).
Proof.
  intros Hj (Hw & Ha & Hd). unfold JobLanes.settle. destruct (decide _) as [E|E].
  - split_and!; [done| |done]. by constructor.
  - split_and!; [done|constructor|]. cbn. apply Forall_app. split; [done|].
    constructor; [by eapply advance_ended|constructor].
Qed.

Lemma step_placed q o : lanes_ok q → all_live q → placed q → placed (JobLanes.step q o).
Proof.
  intros Hq Hv (Hw & Ha & Hd). destruct o as [id name p f|id|]; cbn [JobLanes.step].
  - set (j := JobDescriptor.new id name p f).
    destruct (enqueue_fields j q Hq) as (_ & Ea & Ed & _). unfold placed. rewrite Ea, Ed.
    split_and!; [|done..]. rewrite waiting_enqueue. by constructor.
  - pose proof (waiting_retract id q) as Hr.
    destruct (JobLanes.retract id q) as [[j q']|] eqn:E; [|done].
    destruct (retract_fields _ _ _ _ E Hq) as (_ & Ea & Ed & _).
    unfold placed. cbn. fold (JobLanes.waiting q'). rewrite Ea, Ed.
    split_and!; [by eapply take_out_Forall|done|]. apply Forall_app. split; [done|].
    repeat constructor.
  - cbn. set (q1 := q <| JobLanes.now ::= λ n, n + 1 |>). unfold all_live in Hv.
    destruct (JobLanes.active q) as [j|] eqn:Ea.
    + apply Forall_app in Hv as [Hj _]. apply Forall_cons in Hj as [Hj _].
      eapply settle_placed; [done|]. split_and!; [done| |done]. cbn. by rewrite Ea.
    + pose proof (waiting_dequeue q1) as Hd1.
      destruct (JobLanes.dequeue q1) as [[j q2]|] eqn:E;
        [|split_and!; [done| |done]; cbn; by rewrite Ea].
      edestruct (dequeue_fields q1) as (_ & Ea2 & Ed2 & _); [done|by destruct Hq|].
      rewrite <- (eq_refl : JobLanes.waiting q1 = JobLanes.waiting q), Hd1 in *.
      simpl in Hv. apply Forall_cons in Hv as [Hj _]. apply Forall_cons in Hw as [_ Hw].
      eapply settle_placed; [done|]. split_and!; [done|by rewrite Ea2; cbn; rewrite Ea|by rewrite Ed2].
Qed.

Lemma history_placed s q ops :
  related s q → JobLanes.now q + len ops ≤ u64_max → placed q →
  placed (foldl JobLanes.step q ops) ∧
  JobDescriptor.id <$> JobLanes.all_jobs (foldl JobLanes.step q ops)
  ≡ₚ scheduled ops ++ (JobDescriptor.id <$> JobLanes.all_jobs q).
Proof.
  revert s q. induction ops as [|o ops IH]; intros s q H Hn Hp; [done|]. cbn [foldl].
  unfold len in *. simpl in Hn.
  destruct (step_related s q o H) as (s1 & E1 & H1); [lia|].
  pose proof (step_now q o (related_lanes _ _ H)).
  destruct (IH s1 (JobLanes.step q o)) as [Hp' P]; [done|lia|by apply step_placed; try apply H|].
  split; [done|]. rewrite P, step_all by apply H.
  change (o :: ops) with ([o] ++ ops). unfold scheduled at 3. rewrite omap_app.
  fold (scheduled [o]) (scheduled ops). solve_Permutation.
Qed.

(** No job is lost, duplicated or run after it ended.  After any history of fewer than
    2^64 calls the jobs that the scheduler knows, running, pending and completed, carry
    exactly the identifiers that were scheduled, each as often as it was scheduled; pending
    jobs are [Pending], the running one is [Yielded], and a completed one is [Completed],
    [Failed] or [Cancelled] and has given its function back. *)
Theorem jobs_are_conserved (ops : list JobOp.t) :
  len ops ≤ u64_max →
  ∃ s, fold_outcome JobOp.run ops JobScheduler.new = Return s ∧
       (JobDescriptor.id <$> JobScheduler.search_order s) ≡ₚ scheduled ops ∧
       Forall (λ j, JobDescriptor.status j = JobStatus.Pending) (JobScheduler.pending_jobs s) ∧
       (∀ j, JobScheduler.running_job s = Some j → JobDescriptor.status j = JobStatus.Yielded) ∧
       Forall ended (JobScheduler.completed_jobs s).
Proof.
  intros Hl. destruct (history_related _ _ ops new_related) as (s & E & [(Ep & Er & Ec & Et) _ _] & _);
    [done|]. exists s. split; [done|].
  destruct (history_placed _ _ ops new_related) as [(Hw & Ha & Hd) P]; [done|repeat constructor|].
  unfold JobScheduler.search_order. rewrite Ep, Er, Ec. split_and!; [|done| |done].
  - etrans; [exact P|]. cbn. by rewrite app_nil_r.
  - intros j Ej. rewrite Ej in Ha. by inversion Ha.
Qed.

Lemma jobs_are_conserved_witness :
  ∃ s, fold_outcome JobOp.run sample_history JobScheduler.new = Return s ∧
       (JobDescriptor.id <$> JobScheduler.search_order s) ≡ₚ
       [JobId.from_uuid 1; JobId.from_uuid 2; JobId.from_uuid 3; JobId.from_uuid 4].
Proof.
  destruct (jobs_are_conserved sample_history) as (s & E & P & _); [vm_compute; discriminate|].
  exists s. split; [exact E|exact P].
Defined.

(** *** Liveness *)

(** A function that ends after at most [n] calls, whatever contexts it is called with. *)
Fixpoint ends_within (n : nat) (f : JobFn.t) : Prop :=
  match n with
  | O => False
  | S n => ∀ ctx, match JobFn.call f ctx with
                  | (JobResult.Yielded, f') => ends_within n f'
                  | _ => True
                  end
  end.
Definition job_ends (j : JobDescriptor.t) (n : nat) : Prop :=
  ∃ f, JobDescriptor.executor j = Some f ∧ ends_within n f.
Definition unfinished (q : JobLanes.t) : list JobDescriptor.t :=
  option_list (JobLanes.active q) ++ JobLanes.waiting q.

Lemma advance_ends now j n :
  job_ends j (S n) → JobDescriptor.status (JobLanes.advance now j) = JobStatus.Yielded →
  job_ends (JobLanes.advance now j) n.
Proof.
  intros (f & Ef & Hf). unfold JobLanes.advance. cbn. rewrite Ef.
  specialize (Hf (JobContext.new now (JobDescriptor.ticks_executed j + 1))).
  destruct (JobFn.call f _) as [[| |e] f']; cbn; [done| |done]. intros _. by exists f'.
Qed.

(** A tick works on the first unfinished job and leaves the others alone. *)
Lemma tick_unfinished q :
  lanes_ok q →
  unfinished (JobLanes.step q JobOp.Tick)
  = match unfinished q with
    | [] => []
    | j :: l =>
        let j' := JobLanes.advance (JobLanes.now q + 1) j in
        if decide (JobDescriptor.status j' = JobStatus.Yielded) then j' :: l else l
    end.
Proof.
  intros Hq. unfold unfinished. cbn. set (q1 := q <| JobLanes.now ::= λ n, n + 1 |>).
  destruct (JobLanes.active q) as [j|] eqn:Ea.
  - cbn. unfold JobLanes.settle. by destruct (decide _).
  - pose proof (waiting_dequeue q1) as Hd. cbn.
    rewrite <- (eq_refl : JobLanes.waiting q1 = JobLanes.waiting q).
    destruct (JobLanes.dequeue q1) as [[j q2]|] eqn:E; rewrite Hd.
    + edestruct (dequeue_fields q1) as (_ & Ea2 & _ & En2); [done|by destruct Hq|]. rewrite En2.
      unfold JobLanes.settle. cbn. by destruct (decide _).
    + cbn. by rewrite Ea.
Qed.

Lemma ticks_finish q ns k :
  lanes_ok q → Forall2 job_ends (unfinished q) ns → (list_sum ns ≤ k)%nat →
  (∀ q' o, lanes_ok q' → lanes_ok (JobLanes.step q' o)) →
  unfinished (foldl JobLanes.step q (replicate k JobOp.Tick)) = [].
Proof.
  revert q ns. induction k as [|k IH]; intros q ns Hq Hf Hk Hstep; simpl.
  - destruct Hf as [|j n l ns (f & _ & Hn) _]; [done|]. destruct n; simpl in *; [done|lia].
  - pose proof (tick_unfinished q Hq) as Ht. simpl in Ht.
    destruct Hf as [|j n l ns Hj Hl]; simpl in Hk.
    + eapply (IH _ []); [by apply (Hstep q JobOp.Tick)| |simpl; lia|done]. rewrite Ht. constructor.
    + destruct n as [|n]; [by destruct Hj as (f & _ & [])|].
      destruct (decide _) as [E|E].
      * eapply (IH _ (n :: ns)); [by apply (Hstep q JobOp.Tick)| |simpl; lia|done]. rewrite Ht.
        constructor; [by apply advance_ends|done].
      * eapply (IH _ ns); [by apply (Hstep q JobOp.Tick)| |lia|done]. by rewrite Ht.
Qed.

Lemma step_lanes q o : lanes_ok q → lanes_ok (JobLanes.step q o).
Proof.
  intros Hq. destruct o as [id name p f|id|]; cbn.
  - by apply enqueue_fields.
  - destruct (JobLanes.retract id q) as [[j q']|] eqn:E; [|done].
    by destruct (retract_fields _ _ _ _ E Hq) as ([] & _).
  - destruct (JobLanes.active q); [apply settle_lanes; by destruct Hq|].
    destruct (JobLanes.dequeue _) as [[j q']|] eqn:E; [|by destruct Hq].
    apply settle_lanes. eapply dequeue_fields; [done|by destruct Hq].
Qed.

(** Jobs that end do end.  If after some history each unfinished job ends within its
    number of turns whatever the contexts it sees, then as many ticks as these numbers add up
    to finish all of them: nothing is running or pending any more, every scheduled job is
    among the completed ones, and no tick panics. *)
Theorem jobs_that_end_are_finished (ops : list JobOp.t) (s : JobScheduler.t) (ns : list nat) :
  fold_outcome JobOp.run ops JobScheduler.new = Return s →
  len ops + N.of_nat (list_sum ns) ≤ u64_max →
  Forall2 job_ends (option_list (JobScheduler.running_job s) ++ JobScheduler.pending_jobs s) ns →
  ∃ s', fold_outcome JobOp.run (replicate (list_sum ns) JobOp.Tick) s = Return s' ∧
        JobScheduler.running_job s' = None ∧ JobScheduler.pending_jobs s' = [] ∧
        (JobDescriptor.id <$> JobScheduler.completed_jobs s') ≡ₚ scheduled ops.
Proof.
  intros Es Hl Hf. set (k := list_sum ns) in *.
  destruct (history_related _ _ ops new_related) as (s0 & E & H & Hn); [cbn; lia|].
  assert (s0 = s) as -> by congruence. set (q := foldl JobLanes.step JobLanes.empty ops) in *.
  assert (len (replicate k JobOp.Tick) = N.of_nat k) as Hk by (unfold len; by rewrite length_replicate).
  destruct (history_related _ _ (replicate k JobOp.Tick) H) as (s' & E' & H' & _);
    [rewrite Hk; cbn in *; lia|].
  exists s'. split; [done|].
  destruct (history_placed _ _ ops new_related) as [Hp P]; [cbn; lia|repeat constructor|].
  destruct (history_placed _ _ (replicate k JobOp.Tick) H) as [_ P'];
    [rewrite Hk; cbn in *; lia|done|].
  destruct H as [(Ep & Er & _) Hq _], H' as [(Ep' & Er' & Ec' & _) _ _].
  assert (unfinished (foldl JobLanes.step q (replicate k JobOp.Tick)) = []) as Hu.
  { apply (ticks_finish q ns); [done| |done|apply step_lanes]. unfold unfinished. by rewrite <- Er, <- Ep. }
  set (q' := foldl JobLanes.step q (replicate k JobOp.Tick)) in *.
  unfold unfinished in Hu. apply app_eq_nil in Hu as [Ha Hw].
  rewrite Er', Ep', Ec'. destruct (JobLanes.active q') eqn:Eact; [by cbn in Ha|].
  split_and!; [done|done|].
  unfold JobLanes.all_jobs at 1 in P'. rewrite Eact, Hw in P'. cbn in P'. etrans; [exact P'|].
  replace (scheduled (replicate k JobOp.Tick)) with (@nil JobId.t)
    by (clear; induction k; [done|assumption]).
  etrans; [exact P|]. cbn. by rewrite app_nil_r.
Qed.

Lemma turns_end n : ends_within (S n) (turns (N.of_nat (S n))).
Proof.
  unfold turns. induction n as [|n IH]; [done|].
  intros ctx. unfold JobFn.call. cbn -[N.of_nat ends_within N.leb N.sub].
  destruct (N.leb_spec (N.of_nat (S (S n))) 1); [lia|].
  replace (N.of_nat (S (S n)) - 1) with (N.of_nat (S n)) by lia. exact IH.
Qed.

Definition busy_history : list JobOp.t :=
  [JobOp.Schedule (JobId.from_uuid 1) "low" JobPriority.Low (turns 3); JobOp.Tick;
   JobOp.Schedule (JobId.from_uuid 2) "high" JobPriority.High (turns 2)].
Lemma jobs_that_end_are_finished_witness :
  ∃ s s', fold_outcome JobOp.run busy_history JobScheduler.new = Return s ∧
    fold_outcome JobOp.run (replicate 4 JobOp.Tick) s = Return s' ∧
    (JobDescriptor.id <$> JobScheduler.completed_jobs s') ≡ₚ [JobId.from_uuid 1; JobId.from_uuid 2].
Proof.
  eexists. pose proof (jobs_that_end_are_finished busy_history _ [2; 2]%nat eq_refl) as H.
  destruct H as (s' & E & _ & _ & P); [vm_compute; discriminate| |].
  - repeat constructor; (eexists; split; [reflexivity|]); exact (turns_end 1).
  - exists s'. split; [reflexivity|]. split; [exact E|exact P].
Defined.

(** A running job cannot be cancelled.  [cancel_job] looks only at the pending jobs: for
    a job that has yielded and holds the processor it reports [false] and changes nothing,
    although the status it reports for the job is not final. *)
Theorem running_job_cannot_be_cancelled (s : JobScheduler.t) (j : JobDescriptor.t) :
  JobScheduler.running_job s = Some j →
  Forall (λ p, JobDescriptor.id p ≠ JobDescriptor.id j) (JobScheduler.pending_jobs s) →
  JobScheduler.cancel_job (JobDescriptor.id j) s = (false, s) ∧
  JobScheduler.get_job_status (JobDescriptor.id j) s = Some (JobDescriptor.status j).
Proof.
  intros Er Hp. split.
  - unfold JobScheduler.cancel_job. by rewrite (proj2 (list_find_None _ _) Hp).
  - unfold JobScheduler.get_job_status, JobScheduler.find_job, JobScheduler.search_order.
    rewrite Er. cbn. by rewrite decide_True.
Qed.

Definition busy_state : JobScheduler.t :=
  match fold_outcome JobOp.run busy_history JobScheduler.new with
  | Return s => s
  | _ => JobScheduler.new
  end.
Lemma running_job_cannot_be_cancelled_witness :
  fold_outcome JobOp.run busy_history JobScheduler.new = Return busy_state ∧
  JobScheduler.cancel_job (JobId.from_uuid 1) busy_state = (false, busy_state).
Proof.
  split; [reflexivity|].
  destruct (JobScheduler.running_job busy_state) as [j|] eqn:E; [|discriminate E].
  destruct (running_job_cannot_be_cancelled busy_state j E) as [H _].
  - injection E as <-. repeat constructor. discriminate.
  - injection E as <-. exact H.
Defined.
End JobSpec.

(** ** The process manager *)
Module ManagerSpec.
(** How often the policy of a service still allows its task to be started again; [None]
    when there is no limit. *)
Definition allowance (m : ManagedService.t) : option N :=
  match ManagedDescriptor.restart_policy (ManagedService.descriptor m) with
  | RestartPolicy.Never => Some 0
  | RestartPolicy.ExponentialBackoff max => Some (max - ManagedService.restart_attempts m)
  | RestartPolicy.Always | RestartPolicy.OnFailure => None
  end.
(** [max_attempts] is a [u32]. *)
Definition policy_ok (m : ManagedService.t) : Prop :=
  match ManagedDescriptor.restart_policy (ManagedService.descriptor m) with
  | RestartPolicy.Never => ManagedService.restart_attempts m = 0
  | RestartPolicy.ExponentialBackoff max =>
      max < 2 ^ 32 ∧ ManagedService.restart_attempts m ≤ max
  | RestartPolicy.Always | RestartPolicy.OnFailure => True
  end.
Definition limited (m : ManagedService.t) : Prop := is_Some (allowance m).
Definition left (m : ManagedService.t) : N := default 0 (allowance m).
Definition total (svc : gmap ServiceId.t ManagedService.t) : N :=
  sumN (left <$> (map_to_list svc).*2).

Lemma total_insert svc id m m' :
  svc !! id = Some m → total (<[id := m']> svc) + left m = total svc + left m'.
Proof.
  intros E. rewrite <- (insert_delete_id svc id m E) at 2. rewrite <- insert_delete_eq.
  unfold total. rewrite !(sumN_perm _ _ (fmap_Permutation _ _ _ (fmap_Permutation _ _ _
    (map_to_list_insert (delete id svc) id _ (lookup_delete_eq _ _))))). simpl. lia.
Qed.

Section with_kernel.
Context {K : Type} `{KernelApi K} (drawn : nat → Drawn.t).

(** Everything that the manager needs of its services to keep its promise. *)
Definition managed (p : ProcessManager.t) : Prop :=
  map_Forall (λ _ m, policy_ok m ∧ limited m) (ProcessManager.services p).

(** A restart uses up one unit of the allowance and asks the kernel once. *)
Lemma restart_service_uses m reason s r m' s' :
  policy_ok m → limited m → ProcessManager.should_restart m reason = true →
  ProcessManager.restart_service drawn m s = Return (r, (m', s')) →
  policy_ok m' ∧ limited m' ∧ left m' + 1 = left m ∧ s'.2 = S s.2 ∧
  ManagedService.descriptor m' = ManagedService.descriptor m.
Proof.
  unfold policy_ok, limited, left, allowance, ProcessManager.should_restart,
    ProcessManager.restart_service, ProcessManager.spawn.
  intros Hp Hl Hr ([r1 s1] & E1 & E)%bind_Return.
  apply bind_Return in E1 as ([r2 k] & _ & E1). injection E1 as <- <-.
  cbn in E. destruct (map_err _ r2); simplify_eq; cbn;
    destruct (ManagedDescriptor.restart_policy _) as [| | |max]; cbn in *;
    try done; try (by destruct Hl); apply N.ltb_lt in Hr;
    split_and!; try done; try lia; eauto.
Qed.

Lemma set_state_policy m st :
  let m' := m <| ManagedService.handle ::= ServiceHandle.set_state st |> in
  (policy_ok m' ↔ policy_ok m) ∧ (limited m' ↔ limited m) ∧ left m' = left m.
Proof. done. Qed.

Lemma handle_exit_uses n p s r p' s' :
  managed p → ProcessManager.handle_exit drawn n p s = Return (r, (p', s')) →
  managed p' ∧
  N.of_nat s'.2 + total (ProcessManager.services p')
  = N.of_nat s.2 + total (ProcessManager.services p) ∧
  (ManagedService.descriptor <$> ProcessManager.services p')
  = (ManagedService.descriptor <$> ProcessManager.services p).
Proof.
  intros Hm. unfold ProcessManager.handle_exit.
  destruct (ExitNotification.task_id n) as [tid|]; [|by intros [= <- <- <-]].
  destruct (ProcessManager.task_to_service p !! tid) as [id|]; [|by intros [= <- <- <-]].
  destruct (ProcessManager.services p !! id) as [m|] eqn:Em; [|by intros [= <- <- <-]].
  destruct (Hm _ _ Em) as [Hp Hl].
  set (m1 := m <| ManagedService.handle ::= _ |>).
  assert (∀ m2, policy_ok m2 → limited m2 → ManagedService.descriptor m2 = ManagedService.descriptor m →
    managed (p <| ProcessManager.services ::= <[id := m2]> |>) ∧
    total (<[id := m2]> (ProcessManager.services p)) + left m
    = total (ProcessManager.services p) + left m2 ∧
    (ManagedService.descriptor <$> <[id := m2]> (ProcessManager.services p))
    = (ManagedService.descriptor <$> ProcessManager.services p)) as Hins.
  { intros m2 H2 L2 D2. split_and!.
    - by apply map_Forall_insert_2.
    - by apply total_insert.
    - rewrite fmap_insert, D2. apply insert_id. by rewrite lookup_fmap, Em. }
  destruct (ProcessManager.should_restart m1 _) eqn:Er.
  - intros ([r1 [m2 s2]] & E2 & E)%bind_Return.
    destruct (restart_service_uses m1 _ _ _ _ _ Hp Hl Er E2) as (H2 & L2 & Q2 & N2 & D2).
    destruct (Hins m2 H2 L2 D2) as (? & Ht & ?). change (left m1) with (left m) in Q2.
    destruct r1 as [[]|e]; simplify_eq; (split; [done|]); (split; [|done]); cbn; rewrite N2; lia.
  - intros [= <- <- <-]. destruct (Hins m1 Hp Hl eq_refl) as (? & Ht & ?).
    (split; [done|]); (split; [|done]). change (left m1) with (left m) in Ht. cbn. lia.
Qed.

Lemma handle_all_uses ns p s r p' s' :
  managed p → ProcessManager.handle_all drawn ns p s = Return (r, (p', s')) →
  managed p' ∧
  N.of_nat s'.2 + total (ProcessManager.services p')
  = N.of_nat s.2 + total (ProcessManager.services p) ∧
  (ManagedService.descriptor <$> ProcessManager.services p')
  = (ManagedService.descriptor <$> ProcessManager.services p).
Proof.
  revert p s. induction ns as [|n ns IH]; intros p s Hm; simpl; [by intros [= <- <- <-]|].
  intros ([r1 [p1 s1]] & E1 & E)%bind_Return.
  destruct (handle_exit_uses _ _ _ _ _ _ Hm E1) as (H1 & T1 & D1).
  destruct r1 as [[]|e]; [|by simplify_eq].
  destruct (IH _ _ H1 E) as (H2 & T2 & D2). split_and!; [done|lia|congruence].
Qed.

(** A crash loop is bounded by the policies.  For a manager whose services are all under
    the policy [Never] or [ExponentialBackoff], whatever exit notifications arrive and
    whatever the kernel answers, the number of tasks that [handle_exits] asks the kernel for
    plus the restarts that remain is exactly what the policies allowed before; no service
    goes over its [max_attempts], a service under [Never] is not started again, and no
    descriptor changes. *)
Theorem restarts_are_bounded_by_policy `{ExitNotificationSource Src} (source : Src)
    (p p' : ProcessManager.t) (s s' : K * nat) r source' :
  map_Forall (λ _ m, policy_ok m ∧ limited m) (ProcessManager.services p) →
  ProcessManager.handle_exits drawn source p s = Return (r, (source', (p', s'))) →
  map_Forall (λ _ m, policy_ok m) (ProcessManager.services p') ∧
  N.of_nat s'.2 + total (ProcessManager.services p')
  = N.of_nat s.2 + total (ProcessManager.services p) ∧
  (ManagedService.descriptor <$> ProcessManager.services p')
  = (ManagedService.descriptor <$> ProcessManager.services p).
Proof.
  intros Hm. unfold ProcessManager.handle_exits.
  destruct (drain_exit_notifications source) as [ns src].
  intros ([r1 [p1 s1]] & E & [= <- <- <- <-])%bind_Return.
  destruct (handle_all_uses _ _ _ _ _ _ Hm E) as (H1 & T1 & D1). split; [|done].
  intros id m Em. by destruct (H1 _ _ Em).
Qed.
End with_kernel.

(** A kernel that can start a given number of tasks, to evaluate examples. *)
Definition refuse {A} (k : nat) : outcome (result A KernelError.t * nat) :=
  Return (Err (KernelError.SpawnFailed "full"), k).
#[local] Instance small_kernel : KernelApi nat := {|
  api_spawn_task d _ k :=
    match k with
    | O => refuse O
    | S k => Return (Ok (TaskHandle.mk (Drawn.task d)), k)
    end;
  api_create_channel _ := refuse;
  api_send_message _ _ := refuse;
  api_receive_message _ _ := refuse;
  api_now _ := Instant.mk 0;
  api_sleep _ := refuse;
  api_grant_capability _ _ := refuse;
  api_register_service _ _ := refuse;
  api_lookup_service _ _ := Err KernelError.Timeout
|}.
#[local] Instance vec_source : ExitNotificationSource (list ExitNotification.t) := λ l, (l, []).
Definition small_drawn (n : nat) : Drawn.t :=
  let u := N.of_nat n + 10 in
  Drawn.mk (TaskId.mk u) (ExecutionId.mk u) (ChannelId.mk u) (AddressSpaceId.mk u) (MemoryRegionId.mk u).
Definition small_exit (n : nat) : ExitNotification.t :=
  ExitNotification.mk (ExecutionId.mk (N.of_nat n + 10)) (Some (TaskId.mk (N.of_nat n + 10)))
    (ExitReason.Failure "crash") 0.
Definition start_all (ds : list ManagedDescriptor.t) (k : nat) : ProcessManager.t * (nat * nat) :=
  foldl (λ '(p, s) d, match ProcessManager.start_service small_drawn d p s with
                      | Return (_, ps) => ps
                      | _ => (p, s)
                      end) (ProcessManager.new, (k, O)) ds.
Definition two_services (a b : RestartPolicy.t) (k : nat) :=
  start_all [ManagedDescriptor.new (ServiceId.mk 1) "a" a; ManagedDescriptor.new (ServiceId.mk 2) "b" b] k.

Lemma restarts_are_bounded_by_policy_witness :
  let '(p, s) := two_services RestartPolicy.Never (RestartPolicy.ExponentialBackoff 1) 9 in
  ∃ r src p' s',
    ProcessManager.handle_exits small_drawn [small_exit 0; small_exit 1; small_exit 2] p s
    = Return (r, (src, (p', s'))) ∧ s'.2 = 3%nat ∧
    map_Forall (λ _ m, policy_ok m) (ProcessManager.services p').
Proof.
  destruct (two_services _ _ 9) as [p s] eqn:E. vm_compute in E. injection E as <- <-.
  match goal with |- ∃ _ _ _ _, ?m = _ ∧ _ =>
    destruct m as [[r [src [p' s']]]| |] eqn:E; [|discriminate E|discriminate E] end.
  exists r, src, p', s'. split; [reflexivity|].
  split; [vm_compute in E; injection E as <- <- <- <-; reflexivity|].
  refine (proj1 (restarts_are_bounded_by_policy _ _ _ _ _ _ _ _ _ E)).
  apply map_Forall_to_list.
  match goal with |- Forall _ ?l => let l' := eval vm_compute in l in change l with l' end.
  repeat apply Forall_cons_2; [..|apply Forall_nil_2]; split; cbn; try done; eexists; reflexivity.
Defined.

(** A restart that the kernel refuses loses the exits behind it.  Two services that are
    always to be restarted exit; the kernel refuses the first restart.  [handle_exits] returns
    the error after draining the source: the second service is still reported [Running] with
    its dead task, the first is left [Restarting], and handling the (now empty) source again
    changes nothing even when the kernel has room. *)
Theorem refused_restart_drops_exits :
  let '(p, s) := two_services RestartPolicy.Always RestartPolicy.Always 2 in
  match ProcessManager.handle_exits small_drawn [small_exit 0; small_exit 1] p s with
  | Return (r, (src, (p', (k, n)))) =>
      is_err r = true ∧ src = [] ∧
      (ServiceHandle.state <$> ProcessManager.service_handle (ServiceId.mk 1) p')
      = Some LifecycleState.Restarting ∧
      ProcessManager.service_handle (ServiceId.mk 2) p'
      = ProcessManager.service_handle (ServiceId.mk 2) p ∧
      ProcessManager.handle_exits small_drawn src p' (5%nat, n) = Return (Ok tt, ([], (p', (5%nat, n))))
  | _ => False
  end.
Proof. vm_compute. repeat split. Qed.
End ManagerSpec.
