(* ===== verification/Input.v ===== *)
(** * Keyboard, input service and focus

    [input_types/src/lib.rs], [hal/src/keyboard.rs], [hal/src/keyboard_translation.rs],
    [hal_x86_64/src/keyboard.rs], [hal_x86_64/src/port_io.rs], [services_input/src/lib.rs],
    [services_focus_manager/src/lib.rs] and [services_input_hal_bridge/src/lib.rs]: the way
    of a key from the bytes of the PS/2 controller to a message in the channel of the task
    that holds the keyboard subscription. *)

From S2P Require Import Prelude CoreTypes Debug Ipc AddrSpace SyscallGate Kernel Pipeline.
Open Scope string_scope.
Open Scope list_scope.
Open Scope N_scope.

(** ** Key events ([input_types/src/lib.rs]) *)

Module KeyCode.
(* input_types/src/lib.rs:150-277 KeyCode *)
Inductive t :=
| A | B | C | D | E | F | G | H | I | J | K | L | M | N | O | P | Q | R | S | T | U | V | W | X | Y
| Z | Num0 | Num1 | Num2 | Num3 | Num4 | Num5 | Num6 | Num7 | Num8 | Num9 | F1 | F2 | F3 | F4 | F5
| F6 | F7 | F8 | F9 | F10 | F11 | F12 | Escape | Tab | CapsLock | LeftShift | RightShift | LeftCtrl
| RightCtrl | LeftAlt | RightAlt | LeftMeta | RightMeta | Space | Enter | Backspace | Delete
| Insert | Home | End | PageUp | PageDown | Up | Down | Left | Right | Minus | Equal | LeftBracket
| RightBracket | Backslash | Semicolon | Quote | Comma | Period | Slash | Grave | NumpadDivide
| NumpadMultiply | NumpadMinus | NumpadPlus | NumpadEnter | NumpadPeriod | Numpad0 | Numpad1
| Numpad2 | Numpad3 | Numpad4 | Numpad5 | Numpad6 | Numpad7 | Numpad8 | Numpad9 | PrintScreen
| ScrollLock | Pause | NumLock | Unknown.
(** The position of a variant, for equality and for the order of declaration. *)
Definition to_nat (c : t) : nat :=
  match c with
  | A => 0 | B => 1 | C => 2 | D => 3 | E => 4 | F => 5 | G => 6 | H => 7 | I => 8 | J => 9
  | K => 10 | L => 11 | M => 12 | N => 13 | O => 14 | P => 15 | Q => 16 | R => 17 | S => 18
  | T => 19 | U => 20 | V => 21 | W => 22 | X => 23 | Y => 24 | Z => 25 | Num0 => 26 | Num1 => 27
  | Num2 => 28 | Num3 => 29 | Num4 => 30 | Num5 => 31 | Num6 => 32 | Num7 => 33 | Num8 => 34
  | Num9 => 35 | F1 => 36 | F2 => 37 | F3 => 38 | F4 => 39 | F5 => 40 | F6 => 41 | F7 => 42
  | F8 => 43 | F9 => 44 | F10 => 45 | F11 => 46 | F12 => 47 | Escape => 48 | Tab => 49
  | CapsLock => 50 | LeftShift => 51 | RightShift => 52 | LeftCtrl => 53 | RightCtrl => 54
  | LeftAlt => 55 | RightAlt => 56 | LeftMeta => 57 | RightMeta => 58 | Space => 59 | Enter => 60
  | Backspace => 61 | Delete => 62 | Insert => 63 | Home => 64 | End => 65 | PageUp => 66
  | PageDown => 67 | Up => 68 | Down => 69 | Left => 70 | Right => 71 | Minus => 72 | Equal => 73
  | LeftBracket => 74 | RightBracket => 75 | Backslash => 76 | Semicolon => 77 | Quote => 78
  | Comma => 79 | Period => 80 | Slash => 81 | Grave => 82 | NumpadDivide => 83
  | NumpadMultiply => 84 | NumpadMinus => 85 | NumpadPlus => 86 | NumpadEnter => 87
  | NumpadPeriod => 88 | Numpad0 => 89 | Numpad1 => 90 | Numpad2 => 91 | Numpad3 => 92
  | Numpad4 => 93 | Numpad5 => 94 | Numpad6 => 95 | Numpad7 => 96 | Numpad8 => 97 | Numpad9 => 98
  | PrintScreen => 99 | ScrollLock => 100 | Pause => 101 | NumLock => 102 | Unknown => 103
  end%nat.
Definition of_nat (n : nat) : t :=
  match n with
  | 0 => A | 1 => B | 2 => C | 3 => D | 4 => E | 5 => F | 6 => G | 7 => H | 8 => I | 9 => J
  | 10 => K | 11 => L | 12 => M | 13 => N | 14 => O | 15 => P | 16 => Q | 17 => R | 18 => S
  | 19 => T | 20 => U | 21 => V | 22 => W | 23 => X | 24 => Y | 25 => Z | 26 => Num0 | 27 => Num1
  | 28 => Num2 | 29 => Num3 | 30 => Num4 | 31 => Num5 | 32 => Num6 | 33 => Num7 | 34 => Num8
  | 35 => Num9 | 36 => F1 | 37 => F2 | 38 => F3 | 39 => F4 | 40 => F5 | 41 => F6 | 42 => F7
  | 43 => F8 | 44 => F9 | 45 => F10 | 46 => F11 | 47 => F12 | 48 => Escape | 49 => Tab
  | 50 => CapsLock | 51 => LeftShift | 52 => RightShift | 53 => LeftCtrl | 54 => RightCtrl
  | 55 => LeftAlt | 56 => RightAlt | 57 => LeftMeta | 58 => RightMeta | 59 => Space | 60 => Enter
  | 61 => Backspace | 62 => Delete | 63 => Insert | 64 => Home | 65 => End | 66 => PageUp
  | 67 => PageDown | 68 => Up | 69 => Down | 70 => Left | 71 => Right | 72 => Minus | 73 => Equal
  | 74 => LeftBracket | 75 => RightBracket | 76 => Backslash | 77 => Semicolon | 78 => Quote
  | 79 => Comma | 80 => Period | 81 => Slash | 82 => Grave | 83 => NumpadDivide
  | 84 => NumpadMultiply | 85 => NumpadMinus | 86 => NumpadPlus | 87 => NumpadEnter
  | 88 => NumpadPeriod | 89 => Numpad0 | 90 => Numpad1 | 91 => Numpad2 | 92 => Numpad3
  | 93 => Numpad4 | 94 => Numpad5 | 95 => Numpad6 | 96 => Numpad7 | 97 => Numpad8 | 98 => Numpad9
  | 99 => PrintScreen | 100 => ScrollLock | 101 => Pause | 102 => NumLock
  | _ => Unknown
  end%nat.
Lemma of_to_nat c : of_nat (to_nat c) = c.
Proof. by destruct c. Qed.
#[global] Instance to_nat_inj : Inj (=) (=) to_nat.
Proof. intros a b E. by rewrite <- (of_to_nat a), E, of_to_nat. Qed.
#[global] Instance eq_dec : EqDecision t.
Proof. intros a b. destruct (decide (to_nat a = to_nat b)) as [E|E]; [left|right]; [by apply (inj to_nat)|by intros ->]. Defined.
(** [Display] prints the derived [Debug] form, the name of the variant. *)
(* input_types/src/lib.rs:279-283 Display for KeyCode *)
Definition display (c : t) : string :=
  match c with
  | A => "A" | B => "B" | C => "C" | D => "D" | E => "E" | F => "F" | G => "G" | H => "H"
  | I => "I" | J => "J" | K => "K" | L => "L" | M => "M" | N => "N" | O => "O" | P => "P"
  | Q => "Q" | R => "R" | S => "S" | T => "T" | U => "U" | V => "V" | W => "W" | X => "X"
  | Y => "Y" | Z => "Z" | Num0 => "Num0" | Num1 => "Num1" | Num2 => "Num2" | Num3 => "Num3"
  | Num4 => "Num4" | Num5 => "Num5" | Num6 => "Num6" | Num7 => "Num7" | Num8 => "Num8"
  | Num9 => "Num9" | F1 => "F1" | F2 => "F2" | F3 => "F3" | F4 => "F4" | F5 => "F5" | F6 => "F6"
  | F7 => "F7" | F8 => "F8" | F9 => "F9" | F10 => "F10" | F11 => "F11" | F12 => "F12"
  | Escape => "Escape" | Tab => "Tab" | CapsLock => "CapsLock" | LeftShift => "LeftShift"
  | RightShift => "RightShift" | LeftCtrl => "LeftCtrl" | RightCtrl => "RightCtrl"
  | LeftAlt => "LeftAlt" | RightAlt => "RightAlt" | LeftMeta => "LeftMeta"
  | RightMeta => "RightMeta" | Space => "Space" | Enter => "Enter" | Backspace => "Backspace"
  | Delete => "Delete" | Insert => "Insert" | Home => "Home" | End => "End" | PageUp => "PageUp"
  | PageDown => "PageDown" | Up => "Up" | Down => "Down" | Left => "Left" | Right => "Right"
  | Minus => "Minus" | Equal => "Equal" | LeftBracket => "LeftBracket"
  | RightBracket => "RightBracket" | Backslash => "Backslash" | Semicolon => "Semicolon"
  | Quote => "Quote" | Comma => "Comma" | Period => "Period" | Slash => "Slash" | Grave => "Grave"
  | NumpadDivide => "NumpadDivide" | NumpadMultiply => "NumpadMultiply"
  | NumpadMinus => "NumpadMinus" | NumpadPlus => "NumpadPlus" | NumpadEnter => "NumpadEnter"
  | NumpadPeriod => "NumpadPeriod" | Numpad0 => "Numpad0" | Numpad1 => "Numpad1"
  | Numpad2 => "Numpad2" | Numpad3 => "Numpad3" | Numpad4 => "Numpad4" | Numpad5 => "Numpad5"
  | Numpad6 => "Numpad6" | Numpad7 => "Numpad7" | Numpad8 => "Numpad8" | Numpad9 => "Numpad9"
  | PrintScreen => "PrintScreen" | ScrollLock => "ScrollLock" | Pause => "Pause"
  | NumLock => "NumLock" | Unknown => "Unknown"
  end.
(** All codes, and a code for each of them. *)
Definition all : list t :=
  [ A; B; C; D; E; F; G; H; I; J; K; L; M; N; O; P; Q; R; S; T; U; V; W; X; Y; Z; Num0; Num1;
    Num2; Num3; Num4; Num5; Num6; Num7; Num8; Num9; F1; F2; F3; F4; F5; F6; F7; F8; F9; F10; F11;
    F12; Escape; Tab; CapsLock; LeftShift; RightShift; LeftCtrl; RightCtrl; LeftAlt; RightAlt;
    LeftMeta; RightMeta; Space; Enter; Backspace; Delete; Insert; Home; End; PageUp; PageDown;
    Up; Down; Left; Right; Minus; Equal; LeftBracket; RightBracket; Backslash; Semicolon; Quote;
    Comma; Period; Slash; Grave; NumpadDivide; NumpadMultiply; NumpadMinus; NumpadPlus;
    NumpadEnter; NumpadPeriod; Numpad0; Numpad1; Numpad2; Numpad3; Numpad4; Numpad5; Numpad6;
    Numpad7; Numpad8; Numpad9; PrintScreen; ScrollLock; Pause; NumLock; Unknown ].
#[global] Instance countable : Countable t.
Proof.
  refine (inj_countable display (λ s, snd <$> list_find (λ k, display k = s) all) _).
  intros []; vm_compute; reflexivity.
Defined.
End KeyCode.

Module KeyState.
(* input_types/src/lib.rs:127-138 KeyState *)
Inductive t := Pressed | Released | Repeat.
#[global] Instance eq_dec : EqDecision t.
Proof. solve_decision. Defined.
(* input_types/src/lib.rs:140-148 Display for KeyState *)
Definition display (s : t) : string :=
  match s with Pressed => "pressed" | Released => "released" | Repeat => "repeat" end.
End KeyState.

Module Modifiers.
(** [bits] is a [u8]. *)
(* input_types/src/lib.rs:285-291 Modifiers *)
Record t := from_bits { bits : N }.
#[global] Instance eq_dec : EqDecision t.
Proof. solve_decision. Defined.
(* input_types/src/lib.rs:295-295 Modifiers::NONE *)
Definition NONE : t := from_bits 0.
(* input_types/src/lib.rs:297-297 Modifiers::CTRL *)
Definition CTRL : t := from_bits (N.shiftl 1 0).
(* input_types/src/lib.rs:299-299 Modifiers::ALT *)
Definition ALT : t := from_bits (N.shiftl 1 1).
(* input_types/src/lib.rs:301-301 Modifiers::SHIFT *)
Definition SHIFT : t := from_bits (N.shiftl 1 2).
(* input_types/src/lib.rs:303-303 Modifiers::META *)
Definition META : t := from_bits (N.shiftl 1 3).
(* input_types/src/lib.rs:305-308 Modifiers::none *)
Definition none : t := NONE.
(* input_types/src/lib.rs:320-324 Modifiers::with *)
Definition with_ (other m : t) : t := from_bits (N.lor (bits m) (bits other)).
(* input_types/src/lib.rs:326-329 Modifiers::contains *)
Definition contains (m other : t) : bool := N.land (bits m) (bits other) =? bits other.
(* input_types/src/lib.rs:331-334 Modifiers::is_ctrl *)
Definition is_ctrl (m : t) : bool := contains m CTRL.
(* input_types/src/lib.rs:336-339 Modifiers::is_alt *)
Definition is_alt (m : t) : bool := contains m ALT.
(* input_types/src/lib.rs:341-344 Modifiers::is_shift *)
Definition is_shift (m : t) : bool := contains m SHIFT.
(* input_types/src/lib.rs:346-349 Modifiers::is_meta *)
Definition is_meta (m : t) : bool := contains m META.
(* input_types/src/lib.rs:351-354 Modifiers::is_empty *)
Definition is_empty (m : t) : bool := bits m =? 0.
(* input_types/src/lib.rs:357-378 Display for Modifiers *)
Definition display (m : t) : string :=
  if is_empty m then "none"
  else String.concat "+" ((if is_ctrl m then ["Ctrl"] else []) ++ (if is_alt m then ["Alt"] else [])
         ++ (if is_shift m then ["Shift"] else []) ++ (if is_meta m then ["Meta"] else [])).
End Modifiers.

Module KeyEvent.
(* input_types/src/lib.rs:63-77 KeyEvent *)
Record t := mk {
  code : KeyCode.t;
  modifiers : Modifiers.t;
  state : KeyState.t;
  text : option string
}.
#[global] Instance eq_dec : EqDecision t.
Proof. solve_decision. Defined.
#[global] Instance rebuild_t : Rebuild t := λ e, mk (code e) (modifiers e) (state e) (text e).
(* input_types/src/lib.rs:80-88 KeyEvent::new *)
Definition new (code : KeyCode.t) (modifiers : Modifiers.t) (state : KeyState.t) : t :=
  mk code modifiers state None.
(* input_types/src/lib.rs:90-93 KeyEvent::pressed *)
Definition pressed (c : KeyCode.t) (m : Modifiers.t) : t := new c m KeyState.Pressed.
(* input_types/src/lib.rs:95-98 KeyEvent::released *)
Definition released (c : KeyCode.t) (m : Modifiers.t) : t := new c m KeyState.Released.
(* input_types/src/lib.rs:100-103 KeyEvent::repeat *)
Definition repeat (c : KeyCode.t) (m : Modifiers.t) : t := new c m KeyState.Repeat.
(* input_types/src/lib.rs:105-109 KeyEvent::with_text *)
Definition with_text (s : string) (e : t) : t := e <| text := Some s |>.
(* input_types/src/lib.rs:111-114 KeyEvent::is_pressed *)
Definition is_pressed (e : t) : bool := bool_decide (state e = KeyState.Pressed).
(* input_types/src/lib.rs:116-119 KeyEvent::is_released *)
Definition is_released (e : t) : bool := bool_decide (state e = KeyState.Released).
(* input_types/src/lib.rs:121-124 KeyEvent::is_repeat *)
Definition is_repeat (e : t) : bool := bool_decide (state e = KeyState.Repeat).
End KeyEvent.

Module InputEvent.
(* input_types/src/lib.rs:29-40 InputEvent *)
Inductive t := Key (event : KeyEvent.t).
#[global] Instance eq_dec : EqDecision t.
Proof. solve_decision. Defined.
(* input_types/src/lib.rs:43-46 InputEvent::key *)
Definition key (e : KeyEvent.t) : t := Key e.
(* input_types/src/lib.rs:48-51 InputEvent::is_key *)
Definition is_key (e : t) : bool := match e with Key _ => true end.
(* input_types/src/lib.rs:53-60 InputEvent::as_key *)
Definition as_key (e : t) : option KeyEvent.t := match e with Key e => Some e end.
End InputEvent.

(** ** Scancodes ([hal/src/keyboard.rs], [hal/src/keyboard_translation.rs]) *)

Module HalScancode.
(* hal/src/keyboard.rs:19-30 HalScancode *)
Inductive t := Base (code : N) | E0 (code : N).
#[global] Instance eq_dec : EqDecision t.
Proof. solve_decision. Defined.
(* hal/src/keyboard.rs:43-46 HalScancode::is_extended *)
Definition is_extended (s : t) : bool := match s with E0 _ => true | _ => false end.
(* hal/src/keyboard.rs:48-53 HalScancode::code *)
Definition code (s : t) : N := match s with Base c | E0 c => c end.
End HalScancode.

Module HalKeyEvent.
(* hal/src/keyboard.rs:56-73 HalKeyEvent *)
Record t := mk { scancode : HalScancode.t; pressed : bool; timestamp_ns : option N }.
#[global] Instance eq_dec : EqDecision t.
Proof. solve_decision. Defined.
(* hal/src/keyboard.rs:76-83 HalKeyEvent::new *)
Definition new (scancode : N) (pressed : bool) : t := mk (HalScancode.Base scancode) pressed None.
(* hal/src/keyboard.rs:85-92 HalKeyEvent::with_scancode *)
Definition with_scancode (scancode : HalScancode.t) (pressed : bool) : t := mk scancode pressed None.
(* hal/src/keyboard.rs:94-101 HalKeyEvent::with_timestamp *)
Definition with_timestamp (scancode : N) (pressed : bool) (ts : N) : t :=
  mk (HalScancode.Base scancode) pressed (Some ts).
(* hal/src/keyboard.rs:103-106 HalKeyEvent::is_pressed *)
Definition is_pressed (e : t) : bool := pressed e.
(* hal/src/keyboard.rs:108-111 HalKeyEvent::is_released *)
Definition is_released (e : t) : bool := negb (pressed e).
End HalKeyEvent.

(** A poll may panic: the scripted port of the tests does. *)
(* hal/src/keyboard.rs:114-145 KeyboardDevice *)
Class KeyboardDevice (D : Type) := poll_event : D → outcome (option HalKeyEvent.t * D).

Module ModifierState.
(* hal/src/keyboard_translation.rs:22-37 ModifierState *)
Record t := mk {
  left_shift : bool; right_shift : bool;
  left_ctrl : bool; right_ctrl : bool;
  left_alt : bool; right_alt : bool;
  left_meta : bool; right_meta : bool
}.
#[global] Instance rebuild_t : Rebuild t := λ m,
  mk (left_shift m) (right_shift m) (left_ctrl m) (right_ctrl m) (left_alt m) (right_alt m)
     (left_meta m) (right_meta m).
(* hal/src/keyboard_translation.rs:40-43 ModifierState::new *)
Definition new : t := mk false false false false false false false false.
(* hal/src/keyboard_translation.rs:45-58 ModifierState::update *)
Definition update (code : KeyCode.t) (pressed : bool) (m : t) : t :=
  match code with
  | KeyCode.LeftShift => m <| left_shift := pressed |>
  | KeyCode.RightShift => m <| right_shift := pressed |>
  | KeyCode.LeftCtrl => m <| left_ctrl := pressed |>
  | KeyCode.RightCtrl => m <| right_ctrl := pressed |>
  | KeyCode.LeftAlt => m <| left_alt := pressed |>
  | KeyCode.RightAlt => m <| right_alt := pressed |>
  | KeyCode.LeftMeta => m <| left_meta := pressed |>
  | KeyCode.RightMeta => m <| right_meta := pressed |>
  | _ => m
  end.
(* hal/src/keyboard_translation.rs:60-78 ModifierState::to_modifiers *)
Definition to_modifiers (m : t) : Modifiers.t :=
  let mods := Modifiers.none in
  let mods := if left_shift m || right_shift m then Modifiers.with_ Modifiers.SHIFT mods else mods in
  let mods := if left_ctrl m || right_ctrl m then Modifiers.with_ Modifiers.CTRL mods else mods in
  let mods := if left_alt m || right_alt m then Modifiers.with_ Modifiers.ALT mods else mods in
  if left_meta m || right_meta m then Modifiers.with_ Modifiers.META mods else mods.
End ModifierState.

(* hal/src/keyboard_translation.rs:94-205 scancode_base_to_keycode *)
Definition scancode_base_to_keycode (scancode : N) : KeyCode.t :=
  match scancode with
  | 0x01 => KeyCode.Escape | 0x3B => KeyCode.F1 | 0x3C => KeyCode.F2 | 0x3D => KeyCode.F3
  | 0x3E => KeyCode.F4 | 0x3F => KeyCode.F5 | 0x40 => KeyCode.F6 | 0x41 => KeyCode.F7
  | 0x42 => KeyCode.F8 | 0x43 => KeyCode.F9 | 0x44 => KeyCode.F10 | 0x57 => KeyCode.F11
  | 0x58 => KeyCode.F12 | 0x29 => KeyCode.Grave | 0x02 => KeyCode.Num1 | 0x03 => KeyCode.Num2
  | 0x04 => KeyCode.Num3 | 0x05 => KeyCode.Num4 | 0x06 => KeyCode.Num5 | 0x07 => KeyCode.Num6
  | 0x08 => KeyCode.Num7 | 0x09 => KeyCode.Num8 | 0x0A => KeyCode.Num9 | 0x0B => KeyCode.Num0
  | 0x0C => KeyCode.Minus | 0x0D => KeyCode.Equal | 0x0E => KeyCode.Backspace | 0x0F => KeyCode.Tab
  | 0x10 => KeyCode.Q | 0x11 => KeyCode.W | 0x12 => KeyCode.E | 0x13 => KeyCode.R
  | 0x14 => KeyCode.T | 0x15 => KeyCode.Y | 0x16 => KeyCode.U | 0x17 => KeyCode.I
  | 0x18 => KeyCode.O | 0x19 => KeyCode.P | 0x1A => KeyCode.LeftBracket
  | 0x1B => KeyCode.RightBracket | 0x2B => KeyCode.Backslash | 0x3A => KeyCode.CapsLock
  | 0x1E => KeyCode.A | 0x1F => KeyCode.S | 0x20 => KeyCode.D | 0x21 => KeyCode.F
  | 0x22 => KeyCode.G | 0x23 => KeyCode.H | 0x24 => KeyCode.J | 0x25 => KeyCode.K
  | 0x26 => KeyCode.L | 0x27 => KeyCode.Semicolon | 0x28 => KeyCode.Quote | 0x1C => KeyCode.Enter
  | 0x2A => KeyCode.LeftShift | 0x2C => KeyCode.Z | 0x2D => KeyCode.X | 0x2E => KeyCode.C
  | 0x2F => KeyCode.V | 0x30 => KeyCode.B | 0x31 => KeyCode.N | 0x32 => KeyCode.M
  | 0x33 => KeyCode.Comma | 0x34 => KeyCode.Period | 0x35 => KeyCode.Slash
  | 0x36 => KeyCode.RightShift | 0x1D => KeyCode.LeftCtrl | 0x38 => KeyCode.LeftAlt
  | 0x39 => KeyCode.Space | 0x45 => KeyCode.NumLock | 0x46 => KeyCode.ScrollLock
  | 0x4A => KeyCode.NumpadMinus | 0x4E => KeyCode.NumpadPlus | 0x37 => KeyCode.NumpadMultiply
  | 0x47 => KeyCode.Numpad7 | 0x48 => KeyCode.Numpad8 | 0x49 => KeyCode.Numpad9
  | 0x4B => KeyCode.Numpad4 | 0x4C => KeyCode.Numpad5 | 0x4D => KeyCode.Numpad6
  | 0x4F => KeyCode.Numpad1 | 0x50 => KeyCode.Numpad2 | 0x51 => KeyCode.Numpad3
  | 0x52 => KeyCode.Numpad0 | 0x53 => KeyCode.NumpadPeriod
  | _ => KeyCode.Unknown
  end.
(* hal/src/keyboard_translation.rs:207-240 scancode_e0_to_keycode *)
Definition scancode_e0_to_keycode (scancode : N) : KeyCode.t :=
  match scancode with
  | 0x47 => KeyCode.Home | 0x48 => KeyCode.Up | 0x49 => KeyCode.PageUp | 0x4B => KeyCode.Left
  | 0x4D => KeyCode.Right | 0x4F => KeyCode.End | 0x50 => KeyCode.Down | 0x51 => KeyCode.PageDown
  | 0x52 => KeyCode.Insert | 0x53 => KeyCode.Delete | 0x1D => KeyCode.RightCtrl
  | 0x38 => KeyCode.RightAlt | 0x5B => KeyCode.LeftMeta | 0x5C => KeyCode.RightMeta
  | 0x35 => KeyCode.NumpadDivide | 0x1C => KeyCode.NumpadEnter | 0x37 => KeyCode.PrintScreen
  | _ => KeyCode.Unknown
  end.
(* hal/src/keyboard_translation.rs:81-92 scancode_to_keycode *)
Definition scancode_to_keycode (s : HalScancode.t) : KeyCode.t :=
  match s with
  | HalScancode.Base code => scancode_base_to_keycode code
  | HalScancode.E0 code => scancode_e0_to_keycode code
  end.

Module KeyboardTranslator.
(* hal/src/keyboard_translation.rs:242-247 KeyboardTranslator *)
Record t := mk { modifiers : ModifierState.t }.
#[global] Instance rebuild_t : Rebuild t := λ k, mk (modifiers k).
(* hal/src/keyboard_translation.rs:250-255 KeyboardTranslator::new *)
Definition new : t := mk ModifierState.new.
(* hal/src/keyboard_translation.rs:257-285 KeyboardTranslator::translate *)
Definition translate (hal_event : HalKeyEvent.t) (k : t) : option KeyEvent.t * t :=
  let pressed := HalKeyEvent.is_pressed hal_event in
  let state := if pressed then KeyState.Pressed else KeyState.Released in
  let code := scancode_to_keycode (HalKeyEvent.scancode hal_event) in
  if decide (code = KeyCode.Unknown) then (None, k)
  else
    let k := k <| modifiers ::= ModifierState.update code pressed |> in
    let mods := ModifierState.to_modifiers (modifiers k) in
    (Some (KeyEvent.new code mods state), k).
(* hal/src/keyboard_translation.rs:287-290 KeyboardTranslator::reset *)
Definition reset (k : t) : t := k <| modifiers := ModifierState.new |>.
End KeyboardTranslator.

(** ** The PS/2 controller ([hal_x86_64/src/port_io.rs], [hal_x86_64/src/keyboard.rs]) *)

(* hal_x86_64/src/port_io.rs:20-48 PortIo *)
Class PortIo (P : Type) := {
  inb : N → P → outcome (N * P);
  outb : N → N → P → outcome P
}.

Module FakePortIo.
(* hal_x86_64/src/port_io.rs:127-154 FakePortIo *)
Record t := mk { read_script : list (N * N); read_index : nat; writes : list (N * N) }.
#[global] Instance rebuild_t : Rebuild t := λ p, mk (read_script p) (read_index p) (writes p).
(* hal_x86_64/src/port_io.rs:157-164 FakePortIo::new *)
Definition new : t := mk [] 0 [].
(* hal_x86_64/src/port_io.rs:166-171 FakePortIo::script_read *)
Definition script_read (port value : N) (p : t) : t :=
  p <| read_script ::= λ l, l ++ [(port, value)] |>.
(* hal_x86_64/src/port_io.rs:173-176 FakePortIo::script_reads *)
Definition script_reads (reads : list (N * N)) (p : t) : t := p <| read_script ::= λ l, l ++ reads |>.
(* hal_x86_64/src/port_io.rs:178-181 FakePortIo::remaining_reads *)
Definition remaining_reads (p : t) : outcome N :=
  sub_u64 (len (read_script p)) (N.of_nat (read_index p)).
(* hal_x86_64/src/port_io.rs:188-191 FakePortIo::clear_writes *)
Definition clear_writes (p : t) : t := p <| writes := [] |>.
(* hal_x86_64/src/port_io.rs:193-197 FakePortIo::reset_reads *)
Definition reset_reads (p : t) : t := p <| read_script := [] |> <| read_index := 0%nat |>.
(* hal_x86_64/src/port_io.rs:201-221 FakePortIo::inb *)
Definition fake_inb (port : N) (p : t) : outcome (N * t) :=
  match read_script p !! read_index p with
  | None => Panic
  | Some (expected_port, value) =>
      if port =? expected_port then Return (value, p <| read_index ::= S |>) else Panic
  end.
(* hal_x86_64/src/port_io.rs:223-225 FakePortIo::outb *)
Definition fake_outb (port value : N) (p : t) : outcome t :=
  Return (p <| writes ::= λ l, l ++ [(port, value)] |>).
#[global] Instance port_io : PortIo t := {| inb := fake_inb; outb := fake_outb |}.
End FakePortIo.

Module X86Ps2Keyboard.
(* hal_x86_64/src/keyboard.rs:23-23 PS2_DATA_PORT *)
Definition PS2_DATA_PORT : N := 0x60.
(* hal_x86_64/src/keyboard.rs:24-24 PS2_STATUS_PORT *)
Definition PS2_STATUS_PORT : N := 0x64.
(* hal_x86_64/src/keyboard.rs:27-27 STATUS_OBF *)
Definition STATUS_OBF : N := 0x01.
(* hal_x86_64/src/keyboard.rs:30-30 SCANCODE_E0_PREFIX *)
Definition SCANCODE_E0_PREFIX : N := 0xE0.
(* hal_x86_64/src/keyboard.rs:31-31 SCANCODE_BREAK_BIT *)
Definition SCANCODE_BREAK_BIT : N := 0x80.
(* hal_x86_64/src/keyboard.rs:33-61 X86Ps2Keyboard *)
Record t (P : Type) := mk { port_io : P; pending_e0 : bool }.
Arguments mk {P}.
Arguments port_io {P}.
Arguments pending_e0 {P}.

(** [byte & !0x80] on a [u8] keeps the low seven bits. *)
(* hal_x86_64/src/keyboard.rs:83-110 X86Ps2Keyboard::parse_scancode *)
Definition parse_scancode (byte : N) (pending : bool) : option HalKeyEvent.t * bool :=
  if byte =? SCANCODE_E0_PREFIX then (None, true)
  else
    let pressed := N.land byte SCANCODE_BREAK_BIT =? 0 in
    let code := N.land byte (N.lxor 0xFF SCANCODE_BREAK_BIT) in
    let '(scancode, pending) := if pending then (HalScancode.E0 code, false)
                                else (HalScancode.Base code, pending) in
    (Some (HalKeyEvent.with_scancode scancode pressed), pending).

Section with_port.
Context {P : Type} `{PortIo P}.
(* hal_x86_64/src/keyboard.rs:64-70 X86Ps2Keyboard::new *)
Definition new (p : P) : t P := mk p false.
(* hal_x86_64/src/keyboard.rs:72-76 X86Ps2Keyboard::data_available *)
Definition data_available (k : t P) : outcome (bool * t P) :=
  '(status, p) ← inb PS2_STATUS_PORT (port_io k);
  Return (negb (N.land status STATUS_OBF =? 0), mk p (pending_e0 k)).
(* hal_x86_64/src/keyboard.rs:78-81 X86Ps2Keyboard::read_data *)
Definition read_data (k : t P) : outcome (N * t P) :=
  '(byte, p) ← inb PS2_DATA_PORT (port_io k);
  Return (byte, mk p (pending_e0 k)).
(* hal_x86_64/src/keyboard.rs:113-126 X86Ps2Keyboard::poll_event *)
#[global] Instance keyboard : KeyboardDevice (t P) := λ k,
  '(available, k) ← data_available k;
  if available : bool
  then
    '(byte, k) ← read_data k;
    let '(e, pending) := parse_scancode byte (pending_e0 k) in
    Return (e, mk (port_io k) pending)
  else Return (None, k).
End with_port.
End X86Ps2Keyboard.

(** ** The input service ([services_input/src/lib.rs]) *)

Module InputSubscriptionCap.
(* services_input/src/lib.rs:27-50 InputSubscriptionCap *)
Record t := new { id : N; task_id : TaskId.t; channel : ChannelId.t }.
#[global] Instance eq_dec : EqDecision t.
Proof. solve_decision. Defined.
End InputSubscriptionCap.

Module InputServiceError.
(* services_input/src/lib.rs:52-66 InputServiceError *)
Inductive t :=
| SubscriptionNotFound (id : N)
| SubscriptionAlreadyExists (task_id : TaskId.t)
| InvalidCapability
| DeliveryFailed (reason : string).
(* services_input/src/lib.rs:55-65 Display for InputServiceError *)
Definition display `{UuidFormat} (e : t) : string :=
  match e with
  | SubscriptionNotFound id => "Subscription not found: " +:+ pretty id
  | SubscriptionAlreadyExists t => "Subscription already exists for task: " +:+ Debug.task_id t
  | InvalidCapability => "Invalid subscription capability"
  | DeliveryFailed reason => "Event delivery failed: " +:+ reason
  end.
End InputServiceError.

(* services_input/src/lib.rs:68-69 INPUT_SCHEMA_VERSION *)
Definition INPUT_SCHEMA_VERSION : SchemaVersion.t := SchemaVersion.new 1 0.
(* services_input/src/lib.rs:71-72 INPUT_EVENT_ACTION *)
Definition INPUT_EVENT_ACTION : string := "input.event".

(** [MessagePayload::new] serialises with [serde_json], which is not part of the sources:
    a parameter that gives the bytes or the text of an error. *)
Class EventCodec := encode_event : InputEvent.t → result MessagePayload.t string.

(** [MessageEnvelope::new] draws the message identifier. *)
(* services_input/src/lib.rs:79-97 build_input_event_envelope *)
Definition build_input_event_envelope `{EventCodec} (drawn : MessageId.t) (event : InputEvent.t)
    (source : option TaskId.t) : result MessageEnvelope.t InputServiceError.t :=
  match encode_event event with
  | Err e => Err (InputServiceError.DeliveryFailed e)
  | Ok payload =>
      let envelope := MessageEnvelope.new drawn input_service_id INPUT_EVENT_ACTION
                        INPUT_SCHEMA_VERSION payload in
      Ok (match source with
          | Some task_id => MessageEnvelope.with_source task_id envelope
          | None => envelope
          end)
  end.

(* services_input/src/lib.rs:99-106 InputEventSink *)
Class InputEventSink (S : Type) :=
  send_event : InputSubscriptionCap.t → InputEvent.t → S →
    outcome (result unit InputServiceError.t * S).

Module Subscription.
(* services_input/src/lib.rs:108-113 Subscription *)
Record t := mk { cap : InputSubscriptionCap.t; active : bool }.
#[global] Instance rebuild_t : Rebuild t := λ s, mk (cap s) (active s).
(* services_input/src/lib.rs:116-118 Subscription::new *)
Definition new (cap : InputSubscriptionCap.t) : t := mk cap true.
End Subscription.

Module InputService.
(* services_input/src/lib.rs:121-132 InputService *)
Record t := mk {
  next_subscription_id : N;
  subscriptions : gmap N Subscription.t;
  task_subscriptions : gmap TaskId.t N
}.
#[global] Instance rebuild_t : Rebuild t := λ s,
  mk (next_subscription_id s) (subscriptions s) (task_subscriptions s).
(* services_input/src/lib.rs:135-142 InputService::new *)
Definition new : t := mk 1 ∅ ∅.
(* services_input/src/lib.rs:144-168 InputService::subscribe_keyboard *)
Definition subscribe_keyboard (task_id : TaskId.t) (channel : ChannelId.t) (s : t)
    : outcome (result InputSubscriptionCap.t InputServiceError.t * t) :=
  match task_subscriptions s !! task_id with
  | Some _ => Return (Err (InputServiceError.SubscriptionAlreadyExists task_id), s)
  | None =>
      let id := next_subscription_id s in
      next ← add_u64 id 1;
      let cap := InputSubscriptionCap.new id task_id channel in
      Return (Ok cap, s <| next_subscription_id := next |>
                        <| subscriptions ::= <[id := Subscription.new cap]> |>
                        <| task_subscriptions ::= <[task_id := id]> |>)
  end.
(** The check that every operation on a capability makes. *)
Definition lookup_cap (cap : InputSubscriptionCap.t) (s : t)
    : result Subscription.t InputServiceError.t :=
  match subscriptions s !! InputSubscriptionCap.id cap with
  | None => Err (InputServiceError.SubscriptionNotFound (InputSubscriptionCap.id cap))
  | Some sub =>
      if decide (InputSubscriptionCap.task_id (Subscription.cap sub) ≠ InputSubscriptionCap.task_id cap)
      then Err InputServiceError.InvalidCapability else Ok sub
  end.
(* services_input/src/lib.rs:170-189 InputService::revoke_subscription *)
Definition revoke_subscription (cap : InputSubscriptionCap.t) (s : t)
    : result unit InputServiceError.t * t :=
  match lookup_cap cap s with
  | Err e => (Err e, s)
  | Ok sub =>
      (Ok tt, s <| subscriptions ::=
                 <[InputSubscriptionCap.id cap := sub <| Subscription.active := false |>]> |>)
  end.
(* services_input/src/lib.rs:191-207 InputService::unsubscribe *)
Definition unsubscribe (cap : InputSubscriptionCap.t) (s : t)
    : result unit InputServiceError.t * t :=
  match lookup_cap cap s with
  | Err e => (Err e, s)
  | Ok _ =>
      (Ok tt, s <| subscriptions ::= delete (InputSubscriptionCap.id cap) |>
                <| task_subscriptions ::= delete (InputSubscriptionCap.task_id cap) |>)
  end.
(* services_input/src/lib.rs:209-232 InputService::deliver_event *)
Definition deliver_event (cap : InputSubscriptionCap.t) (event : InputEvent.t) (s : t)
    : result bool InputServiceError.t :=
  map_ok Subscription.active (lookup_cap cap s).
(* services_input/src/lib.rs:234-248 InputService::deliver_event_with *)
Definition deliver_event_with `{InputEventSink Snk} (cap : InputSubscriptionCap.t)
    (event : InputEvent.t) (s : t) (sink : Snk) : outcome (result bool InputServiceError.t * Snk) :=
  match deliver_event cap event s with
  | Err e => Return (Err e, sink)
  | Ok active =>
      if active : bool
      then try! _, sink := send_event cap event sink in Return (Ok active, sink)
      else Return (Ok active, sink)
  end.
(* services_input/src/lib.rs:250-256 InputService::is_subscription_active *)
Definition is_subscription_active (cap : InputSubscriptionCap.t) (s : t) : bool :=
  match subscriptions s !! InputSubscriptionCap.id cap with
  | Some sub => Subscription.active sub &&
      bool_decide (InputSubscriptionCap.task_id (Subscription.cap sub) = InputSubscriptionCap.task_id cap)
  | None => false
  end.
(* services_input/src/lib.rs:258-264 InputService::get_task_subscription *)
Definition get_task_subscription (task_id : TaskId.t) (s : t) : option InputSubscriptionCap.t :=
  Subscription.cap <$> (task_subscriptions s !! task_id ≫= λ id, subscriptions s !! id).
(* services_input/src/lib.rs:266-269 InputService::active_subscription_count *)
Definition active_subscription_count `{HashOrder} (s : t) : N :=
  len (filter (λ sub, Subscription.active sub = true) (hm_values (subscriptions s))).
(* services_input/src/lib.rs:271-274 InputService::total_subscription_count *)
Definition total_subscription_count (s : t) : N := N.of_nat (size (subscriptions s)).
End InputService.

(** ** Focus ([services_focus_manager/src/lib.rs]) *)

Module FocusError.
(* services_focus_manager/src/lib.rs:25-39 FocusError *)
Inductive t := FocusDenied (reason : string) | NoFocus | SubscriptionNotFound | EmptyStack.
End FocusError.

Module FocusEvent.
(* services_focus_manager/src/lib.rs:41-66 FocusEvent *)
Inductive t :=
| Granted (subscription_id timestamp_ns : N)
| Transferred (from_subscription_id to_subscription_id timestamp_ns : N)
| Released (subscription_id timestamp_ns : N)
| Denied (subscription_id : N) (reason : string) (timestamp_ns : N).
End FocusEvent.

Module FocusManager.
(* services_focus_manager/src/lib.rs:68-79 FocusManager *)
Record t := mk {
  focus_stack : list InputSubscriptionCap.t;
  audit_trail : list FocusEvent.t;
  next_timestamp : N
}.
#[global] Instance rebuild_t : Rebuild t := λ m,
  mk (focus_stack m) (audit_trail m) (next_timestamp m).
(* services_focus_manager/src/lib.rs:82-89 FocusManager::new *)
Definition new : t := mk [] [] 0.
(* services_focus_manager/src/lib.rs:205-210 FocusManager::next_timestamp *)
Definition take_timestamp (m : t) : outcome (N * t) :=
  let ts := next_timestamp m in
  next ← add_u64 ts 1;
  Return (ts, m <| next_timestamp := next |>).
(* services_focus_manager/src/lib.rs:91-124 FocusManager::request_focus *)
Definition request_focus (cap : InputSubscriptionCap.t) (m : t)
    : outcome (result unit FocusError.t * t) :=
  '(timestamp, m) ← take_timestamp m;
  match focus_stack m with
  | current :: _ =>
      if InputSubscriptionCap.id current =? InputSubscriptionCap.id cap then Return (Ok tt, m)
      else
        let m := m <| audit_trail ::= λ l, l ++ [FocusEvent.Transferred
                     (InputSubscriptionCap.id current) (InputSubscriptionCap.id cap) timestamp] |> in
        Return (Ok tt, m <| focus_stack ::= cons cap |>)
  | [] =>
      let m := m <| audit_trail ::= λ l, l ++ [FocusEvent.Granted
                   (InputSubscriptionCap.id cap) timestamp] |> in
      Return (Ok tt, m <| focus_stack ::= cons cap |>)
  end.
(* services_focus_manager/src/lib.rs:126-140 FocusManager::release_focus *)
Definition release_focus (m : t) : outcome (result InputSubscriptionCap.t FocusError.t * t) :=
  match focus_stack m with
  | [] => Return (Err FocusError.EmptyStack, m)
  | cap :: rest =>
      let m := m <| focus_stack := rest |> in
      '(timestamp, m) ← take_timestamp m;
      Return (Ok cap, m <| audit_trail ::= λ l, l ++ [FocusEvent.Released
                             (InputSubscriptionCap.id cap) timestamp] |>)
  end.
(* services_focus_manager/src/lib.rs:142-163 FocusManager::remove_subscription *)
Definition remove_subscription (cap : InputSubscriptionCap.t) (m : t)
    : outcome (result unit FocusError.t * t) :=
  match list_find (λ c, InputSubscriptionCap.id c = InputSubscriptionCap.id cap) (focus_stack m) with
  | None => Return (Err FocusError.SubscriptionNotFound, m)
  | Some (pos, _) =>
      let m := m <| focus_stack ::= delete pos |> in
      '(timestamp, m) ← take_timestamp m;
      Return (Ok tt, m <| audit_trail ::= λ l, l ++ [FocusEvent.Released
                            (InputSubscriptionCap.id cap) timestamp] |>)
  end.
(* services_focus_manager/src/lib.rs:165-168 FocusManager::current_focus *)
Definition current_focus (m : t) : option InputSubscriptionCap.t := head (focus_stack m).
(* services_focus_manager/src/lib.rs:170-176 FocusManager::has_focus *)
Definition has_focus (cap : InputSubscriptionCap.t) (m : t) : bool :=
  match head (focus_stack m) with
  | Some c => InputSubscriptionCap.id c =? InputSubscriptionCap.id cap
  | None => false
  end.
(* services_focus_manager/src/lib.rs:178-187 FocusManager::route_event *)
Definition route_event (event : InputEvent.t) (m : t)
    : result (option InputSubscriptionCap.t) FocusError.t := Ok (current_focus m).
(* services_focus_manager/src/lib.rs:189-192 FocusManager::stack_depth *)
Definition stack_depth (m : t) : N := len (focus_stack m).
End FocusManager.

(** ** The bridge ([services_input_hal_bridge/src/lib.rs]) *)

(* kernel_api/src/v0.rs:13-46 KernelApiV0 *)
Class KernelApiV0 (K : Type) := {
  v0_create_task : Drawn.t → string → list (Cap.t unit) → op K KernelError.t TaskId.t;
  v0_create_channel : Drawn.t → op K KernelError.t ChannelId.t;
  v0_send : ChannelId.t → MessageEnvelope.t → op K KernelError.t unit;
  v0_recv : ChannelId.t → op K KernelError.t MessageEnvelope.t;
  v0_yield_now : op K KernelError.t unit;
  v0_sleep : Duration.t → op K KernelError.t unit;
  v0_grant : TaskId.t → Cap.t unit → op K KernelError.t unit
}.
(* sim_kernel/src/lib.rs:2219-2254 KernelApiV0 for SimulatedKernel *)
#[global] Instance kernel_api_v0 `{HashOrder} `{UuidFormat} `{DefaultHasher} : KernelApiV0 Kernel.t := {|
  v0_create_task := Kernel.create_task;
  v0_create_channel d k := Return (Kernel.create_channel (Drawn.channel d) k);
  v0_send := Kernel.send_message;
  v0_recv ch := Kernel.receive_message ch None;
  v0_yield_now k := Return (Kernel.yield_now k);
  v0_sleep := Kernel.sleep;
  v0_grant task cap k := Return (Kernel.grant_capability task cap k)
|}.

Module BridgeError.
(* services_input_hal_bridge/src/lib.rs:60-74 BridgeError *)
Inductive t :=
| BudgetExhausted (resource : string)
| PolicyDenied (reason : string)
| InputServiceError (msg : string)
| ChannelError (msg : string).
(* services_input_hal_bridge/src/lib.rs:247-259 InputHalBridge::map_kernel_error *)
Definition map_kernel_error (e : KernelError.t) : t :=
  match e with
  | KernelError.ResourceBudgetExceeded _ _ _ _ _
  | KernelError.ResourceBudgetExhausted _ _ _ _ _ => BudgetExhausted "MessageCount"
  | KernelError.InsufficientAuthority reason => PolicyDenied reason
  | KernelError.SendFailed reason
  | KernelError.ChannelError reason
  | KernelError.ReceiveFailed reason => ChannelError reason
  | other => ChannelError (display_kernel_error other)
  end.
End BridgeError.

Module PollResult.
(* services_input_hal_bridge/src/lib.rs:76-83 PollResult *)
Inductive t := EventDelivered | NoEvent.
End PollResult.

(** The sink borrows the kernel; [drawn] is the identifier of the message it will build. *)
Module KernelInputSink.
(* services_input_hal_bridge/src/lib.rs:85-98 KernelInputSink *)
Record t (K : Type) := new { kernel : K; source_task : option TaskId.t; drawn : MessageId.t }.
Arguments new {K}.
Arguments kernel {K}.
Arguments source_task {K}.
Arguments drawn {K}.
(* services_input_hal_bridge/src/lib.rs:100-114 KernelInputSink::send_event *)
#[global] Instance sink `{KernelApiV0 K} `{EventCodec} : InputEventSink (t K) := λ cap event s,
  match build_input_event_envelope (drawn s) event (source_task s) with
  | Err e => Return (Err e, s)
  | Ok envelope =>
      '(r, k) ← v0_send (InputSubscriptionCap.channel cap) envelope (kernel s);
      Return (map_err (λ e, InputServiceError.DeliveryFailed (display_kernel_error e)) r,
              new k (source_task s) (drawn s))
  end.
End KernelInputSink.

Module InputHalBridge.
(** The boxed keyboard is any device [D]. *)
(* services_input_hal_bridge/src/lib.rs:116-143 InputHalBridge *)
Record t (D : Type) := mk {
  execution_id : ExecutionId.t;
  task_id : TaskId.t;
  subscription : InputSubscriptionCap.t;
  keyboard : D;
  translator : KeyboardTranslator.t;
  events_delivered : N
}.
Arguments mk {D}.
Arguments execution_id {D}.
Arguments task_id {D}.
Arguments subscription {D}.
Arguments keyboard {D}.
Arguments translator {D}.
Arguments events_delivered {D}.
#[global] Instance rebuild_t {D} : Rebuild (t D) := λ b,
  mk (execution_id b) (task_id b) (subscription b) (keyboard b) (translator b) (events_delivered b).

Section with_device.
Context {D : Type} `{KeyboardDevice D} `{UuidFormat}.
(* services_input_hal_bridge/src/lib.rs:146-168 InputHalBridge::new *)
Definition new (e : ExecutionId.t) (task : TaskId.t) (sub : InputSubscriptionCap.t) (d : D) : t D :=
  mk e task sub d KeyboardTranslator.new 0.

(** The first half of both polls: one event from the device, translated. *)
(* services_input_hal_bridge/src/lib.rs:182-194 InputHalBridge::poll *)
Definition next_event (b : t D) : outcome (option InputEvent.t * t D) :=
  '(hal_event, d) ← poll_event (keyboard b);
  let b := b <| keyboard := d |> in
  match hal_event with
  | None => Return (None, b)
  | Some hal_event =>
      let '(key_event, tr) := KeyboardTranslator.translate hal_event (translator b) in
      Return (InputEvent.key <$> key_event, b <| translator := tr |>)
  end.
(* services_input_hal_bridge/src/lib.rs:170-213 InputHalBridge::poll *)
Definition poll `{KernelApiV0 K} `{EventCodec} (drawn : MessageId.t) (input_service : InputService.t)
    (b : t D) (k : K) : outcome (result PollResult.t BridgeError.t * (t D * K)) :=
  '(ev, b) ← next_event b;
  match ev with
  | None => Return (Ok PollResult.NoEvent, (b, k))
  | Some input_event =>
      match InputService.deliver_event (subscription b) input_event input_service with
      | Err e => Return (Err (BridgeError.InputServiceError (InputServiceError.display e)), (b, k))
      | Ok false => Return (Ok PollResult.NoEvent, (b, k))
      | Ok true =>
          match build_input_event_envelope drawn input_event (Some (task_id b)) with
          | Err e => Return (Err (BridgeError.InputServiceError (InputServiceError.display e)), (b, k))
          | Ok envelope =>
              '(r, k) ← v0_send (InputSubscriptionCap.channel (subscription b)) envelope k;
              match r with
              | Err e => Return (Err (BridgeError.map_kernel_error e), (b, k))
              | Ok _ =>
                  n ← add_u64 (events_delivered b) 1;
                  Return (Ok PollResult.EventDelivered, (b <| events_delivered := n |>, k))
              end
          end
      end
  end.
(* services_input_hal_bridge/src/lib.rs:215-245 InputHalBridge::poll_with_sink *)
Definition poll_with_sink `{InputEventSink Snk} (input_service : InputService.t) (b : t D) (sink : Snk)
    : outcome (result PollResult.t BridgeError.t * (t D * Snk)) :=
  '(ev, b) ← next_event b;
  match ev with
  | None => Return (Ok PollResult.NoEvent, (b, sink))
  | Some input_event =>
      '(r, sink) ← InputService.deliver_event_with (subscription b) input_event input_service sink;
      match r with
      | Err e => Return (Err (BridgeError.InputServiceError (InputServiceError.display e)), (b, sink))
      | Ok true =>
          n ← add_u64 (events_delivered b) 1;
          Return (Ok PollResult.EventDelivered, (b <| events_delivered := n |>, sink))
      | Ok false => Return (Ok PollResult.NoEvent, (b, sink))
      end
  end.
(* services_input_hal_bridge/src/lib.rs:276-279 InputHalBridge::reset_translator *)
Definition reset_translator (b : t D) : t D := b <| translator ::= KeyboardTranslator.reset |>.
End with_device.
End InputHalBridge.
