(* ===== verification/InputProps.v ===== *)
(** * Properties of the input path

    The scancode parser recovers what the controller encodes; the translator knows exactly
    which modifier keys are held; a revoked subscription never receives an event again; the
    audit trail of the focus manager determines its stack; the bridge sends one message per
    key to an active subscription and nothing otherwise. *)

From S2P Require Import Prelude CoreTypes Debug Ipc SyscallGate Kernel Pipeline Input.
Open Scope N_scope.

(** ** The PS/2 stream *)
Module KeyboardSpec.

(** The bytes a controller sends for an event (scan code set 1). *)
Definition key_byte (code : N) (pressed : bool) : N := if pressed then code else N.lor code 0x80.
Definition encode_key (e : HalKeyEvent.t) : list N :=
  match HalKeyEvent.scancode e with
  | HalScancode.Base c => [key_byte c (HalKeyEvent.pressed e)]
  | HalScancode.E0 c => [0xE0; key_byte c (HalKeyEvent.pressed e)]
  end.
(** Scan codes have seven bits, and 0x60 is not one: its release would be the prefix. *)
Definition encodable (e : HalKeyEvent.t) : bool :=
  (HalScancode.code (HalKeyEvent.scancode e) <? 0x80)
  && negb (HalScancode.code (HalKeyEvent.scancode e) =? 0x60)
  && bool_decide (HalKeyEvent.timestamp_ns e = None).

(** The status and data reads of one poll per byte. *)
Definition script (bytes : list N) : list (N * N) :=
  bytes ≫= λ b, [(X86Ps2Keyboard.PS2_STATUS_PORT, X86Ps2Keyboard.STATUS_OBF);
                 (X86Ps2Keyboard.PS2_DATA_PORT, b)].
(** Polling [n] times, keeping the events. *)
Fixpoint polls `{KeyboardDevice D} (n : nat) (d : D) : outcome (list HalKeyEvent.t * D) :=
  match n with
  | O => Return ([], d)
  | S n =>
      '(e, d) ← poll_event d;
      '(es, d) ← polls n d;
      Return (option_list e ++ es, d)
  end.

Notation fake := (X86Ps2Keyboard.t FakePortIo.t).
Definition fake_at (all : list (N * N)) (i : nat) (w : list (N * N)) (pending : bool) : fake :=
  X86Ps2Keyboard.mk (FakePortIo.mk all i w) pending.

(** What the bytes below 0x80 decode to, checked one by one. *)
Definition decodes (c : N) : bool :=
  forallb (λ pressed, forallb (λ pending,
    bool_decide (X86Ps2Keyboard.parse_scancode (key_byte c pressed) pending
      = (Some (HalKeyEvent.with_scancode (if pending then HalScancode.E0 c else HalScancode.Base c)
                 pressed), false))) [true; false]) [true; false].
Lemma decodes_all : forallb (λ n, (n =? 0x60) || decodes n) (N.of_nat <$> seq 0 128) = true.
Proof. vm_compute. reflexivity. Qed.

Lemma parse_key_byte c pressed pending :
  c < 0x80 → c ≠ 0x60 →
  X86Ps2Keyboard.parse_scancode (key_byte c pressed) pending
  = (Some (HalKeyEvent.with_scancode (if pending then HalScancode.E0 c else HalScancode.Base c)
             pressed), false).
Proof.
  intros Hc Hn. pose proof decodes_all as H.
  rewrite forallb_forall in H. specialize (H c).
  assert (In c (N.of_nat <$> seq 0 128)) as Hin.
  { apply list_elem_of_In, list_elem_of_fmap. exists (N.to_nat c). rewrite elem_of_seq. lia. }
  specialize (H Hin). apply orb_true_iff in H as [H|H].
  - apply N.eqb_eq in H. done.
  - unfold decodes in H. cbn [forallb] in H.
    rewrite !andb_true_iff, !bool_decide_eq_true in H. destruct pressed, pending; apply H.
Qed.

Lemma poll_byte pre b post w pending :
  let all := pre ++ script [b] ++ post in
  poll_event (fake_at all (length pre) w pending)
  = let '(e, pending') := X86Ps2Keyboard.parse_scancode b pending in
    Return (e, fake_at all (2 + length pre) w pending').
Proof.
  cbn. unfold poll_event, X86Ps2Keyboard.keyboard, X86Ps2Keyboard.data_available, inb, FakePortIo.port_io,
    FakePortIo.fake_inb. cbn -[lookup].
  rewrite list_lookup_middle by done. cbn -[lookup].
  replace (pre ++ (X86Ps2Keyboard.PS2_STATUS_PORT, X86Ps2Keyboard.STATUS_OBF)
               :: (X86Ps2Keyboard.PS2_DATA_PORT, b) :: post)
    with ((pre ++ [(X86Ps2Keyboard.PS2_STATUS_PORT, X86Ps2Keyboard.STATUS_OBF)])
            ++ (X86Ps2Keyboard.PS2_DATA_PORT, b) :: post) by (by rewrite <- app_assoc).
  rewrite list_lookup_middle by (rewrite length_app; simpl; lia). cbn.
  by destruct (X86Ps2Keyboard.parse_scancode b pending).
Qed.

Lemma script_app l1 l2 : script (l1 ++ l2) = script l1 ++ script l2.
Proof. apply bind_app. Qed.

Lemma polls_app `{KeyboardDevice D} n m (d : D) :
  polls (n + m) d = '(es, d) ← polls n d; '(fs, d) ← polls m d; Return (es ++ fs, d).
Proof.
  revert d. induction n as [|n IH]; intros d; cbn; [by destruct (polls m d) as [[]| |]|].
  destruct (poll_event d) as [[e d1]| |]; cbn; [|done..]. rewrite IH.
  destruct (polls n d1) as [[es d2]| |]; cbn; [|done..].
  destruct (polls m d2) as [[fs d3]| |]; cbn; [|done..]. by rewrite app_assoc.
Qed.

Lemma polls_key e pre post w all :
  encodable e = true → all = pre ++ script (encode_key e) ++ post →
  polls (length (encode_key e)) (fake_at all (length pre) w false)
  = Return ([e], fake_at all (length (pre ++ script (encode_key e))) w false).
Proof.
  unfold encodable. rewrite !andb_true_iff, negb_true_iff, bool_decide_eq_true.
  intros [[Hc%N.ltb_lt Hn%N.eqb_neq] Ht] Eall.
  destruct e as [[c|c] pressed ts]; cbn in Hc, Hn, Ht; subst ts;
    cbn [encode_key HalKeyEvent.scancode HalKeyEvent.pressed length polls] in *.
  - rewrite Eall at 1. rewrite (poll_byte pre), parse_key_byte, <- Eall by done. cbn.
    by rewrite length_app, Nat.add_comm.
  - assert (all = pre ++ script [0xE0] ++ script [key_byte c pressed] ++ post) as E1 by done.
    assert (all = (pre ++ script [0xE0]) ++ script [key_byte c pressed] ++ post) as E2
      by (by rewrite E1, <- app_assoc).
    rewrite E1 at 1. rewrite (poll_byte pre), <- E1. cbn [X86Ps2Keyboard.parse_scancode].
    change (2 + length pre)%nat with (S (S (length pre))).
    replace (S (S (length pre))) with (length (pre ++ script [0xE0])) by (rewrite length_app; simpl; lia).
    cbn -[poll_event length script]. rewrite E2 at 1.
    rewrite (poll_byte (pre ++ script [0xE0])), parse_key_byte, <- E2 by done. cbn.
    do 3 f_equal. rewrite !length_app. cbn. f_equal. lia.
Qed.

Lemma polls_keys es pre post w all :
  Forall (λ e, encodable e = true) es → all = pre ++ script (es ≫= encode_key) ++ post →
  polls (length (es ≫= encode_key)) (fake_at all (length pre) w false)
  = Return (es, fake_at all (length (pre ++ script (es ≫= encode_key))) w false).
Proof.
  revert pre. induction es as [|e es IH]; intros pre He Eall; [cbn; by rewrite app_nil_r|].
  inversion He as [|?? H1 H2]; subst x l. rewrite bind_cons, length_app, polls_app in *.
  rewrite script_app, <- app_assoc in Eall. rewrite (polls_key _ pre _ _ _ H1 Eall). cbn -[length].
  rewrite (IH (pre ++ script (encode_key e))); [|done|by rewrite <- app_assoc]. cbn -[length].
  by rewrite script_app, app_assoc.
Qed.

(** Parsing the PS/2 stream recovers the events.  For any sequence of key events with
    seven-bit codes other than 0x60 (whose release would be the byte of the prefix), the bytes
    that a controller sends for them, delivered through the ports one per poll, make the
    driver return exactly these events in order, with no prefix left pending. *)
Theorem ps2_stream_round_trips (es : list HalKeyEvent.t) :
  Forall (λ e, encodable e = true) es →
  let bytes := es ≫= encode_key in
  polls (length bytes) (X86Ps2Keyboard.new (FakePortIo.script_reads (script bytes) FakePortIo.new))
  = Return (es, fake_at (script bytes) (length (script bytes)) [] false).
Proof.
  intros He. apply (polls_keys es [] [] [] _ He). by rewrite app_nil_r.
Qed.

Definition sample_keys : list HalKeyEvent.t :=
  [HalKeyEvent.new 0x2A true; HalKeyEvent.with_scancode (HalScancode.E0 0x48) true;
   HalKeyEvent.with_scancode (HalScancode.E0 0x48) false; HalKeyEvent.new 0x2A false].
Lemma ps2_stream_round_trips_witness :
  polls 6 (X86Ps2Keyboard.new (FakePortIo.script_reads
    (script [0x2A; 0xE0; 0x48; 0xE0; 0xC8; 0xAA]) FakePortIo.new))
  = Return (sample_keys, fake_at (script [0x2A; 0xE0; 0x48; 0xE0; 0xC8; 0xAA]) 12 [] false).
Proof.
  refine (ps2_stream_round_trips sample_keys _).
  repeat (apply Forall_cons_2; [reflexivity|]). apply Forall_nil_2.
Defined.

(** ** Held modifiers *)

(** Whether the last event of a key was a press. *)
Definition held (c : KeyCode.t) (es : list HalKeyEvent.t) : bool :=
  match rfind (λ e, bool_decide (scancode_to_keycode (HalKeyEvent.scancode e) = c)) es with
  | Some e => HalKeyEvent.pressed e
  | None => false
  end.
Definition translate_all (es : list HalKeyEvent.t) (k : KeyboardTranslator.t) : KeyboardTranslator.t :=
  foldl (λ k e, (KeyboardTranslator.translate e k).2) k es.

Lemma held_snoc c es e :
  held c (es ++ [e]) = if decide (scancode_to_keycode (HalKeyEvent.scancode e) = c)
                       then HalKeyEvent.pressed e else held c es.
Proof.
  unfold held. rewrite rfind_snoc.
  destruct (decide (scancode_to_keycode (HalKeyEvent.scancode e) = c)) as [E|E].
  - by rewrite bool_decide_true.
  - by rewrite bool_decide_false.
Qed.

(** The translator's record agrees with a history. *)
Definition tracks (m : ModifierState.t) (es : list HalKeyEvent.t) : Prop :=
  m = ModifierState.mk (held KeyCode.LeftShift es) (held KeyCode.RightShift es)
        (held KeyCode.LeftCtrl es) (held KeyCode.RightCtrl es) (held KeyCode.LeftAlt es)
        (held KeyCode.RightAlt es) (held KeyCode.LeftMeta es) (held KeyCode.RightMeta es).

Lemma update_tracks m es e :
  tracks m es →
  tracks (ModifierState.update (scancode_to_keycode (HalKeyEvent.scancode e)) (HalKeyEvent.pressed e) m)
         (es ++ [e]).
Proof.
  unfold tracks. intros ->. rewrite !held_snoc.
  by destruct (scancode_to_keycode (HalKeyEvent.scancode e)).
Qed.

Lemma translate_tracks k es e :
  tracks (KeyboardTranslator.modifiers k) es →
  tracks (KeyboardTranslator.modifiers (KeyboardTranslator.translate e k).2) (es ++ [e]).
Proof.
  intros H. unfold KeyboardTranslator.translate, HalKeyEvent.is_pressed.
  apply update_tracks with (e := e) in H. destruct (decide _) as [E|E]; [|done].
  rewrite E in H. done.
Qed.

Lemma translate_all_tracks es :
  tracks (KeyboardTranslator.modifiers (translate_all es KeyboardTranslator.new)) es.
Proof.
  induction es as [|e es IH] using rev_ind; [done|].
  unfold translate_all in *. rewrite foldl_snoc. by apply translate_tracks.
Qed.

Lemma to_modifiers_spec m :
  let r := ModifierState.to_modifiers m in
  Modifiers.is_shift r = ModifierState.left_shift m || ModifierState.right_shift m ∧
  Modifiers.is_ctrl r = ModifierState.left_ctrl m || ModifierState.right_ctrl m ∧
  Modifiers.is_alt r = ModifierState.left_alt m || ModifierState.right_alt m ∧
  Modifiers.is_meta r = ModifierState.left_meta m || ModifierState.right_meta m ∧
  Modifiers.bits r < 16.
Proof.
  unfold ModifierState.to_modifiers. cbn zeta.
  destruct (ModifierState.left_shift m || _), (ModifierState.left_ctrl m || _),
    (ModifierState.left_alt m || _), (ModifierState.left_meta m || _); vm_compute; done.
Qed.

(** The modifiers of a key event are the modifier keys that are held.  After any sequence
    of key events since the last reset, an event that translates to a key carries Shift
    exactly when the last event of the left or of the right shift key was a press, and
    likewise for Ctrl, Alt and Meta; no other bit is set.  The event itself counts. *)
Theorem modifiers_are_the_held_keys (es : list HalKeyEvent.t) (e : HalKeyEvent.t) (ev : KeyEvent.t) k' :
  KeyboardTranslator.translate e (translate_all es KeyboardTranslator.new) = (Some ev, k') →
  let now := es ++ [e] in
  let m := KeyEvent.modifiers ev in
  Modifiers.is_shift m = held KeyCode.LeftShift now || held KeyCode.RightShift now ∧
  Modifiers.is_ctrl m = held KeyCode.LeftCtrl now || held KeyCode.RightCtrl now ∧
  Modifiers.is_alt m = held KeyCode.LeftAlt now || held KeyCode.RightAlt now ∧
  Modifiers.is_meta m = held KeyCode.LeftMeta now || held KeyCode.RightMeta now ∧
  Modifiers.bits m < 16 ∧
  KeyEvent.code ev = scancode_to_keycode (HalKeyEvent.scancode e) ∧
  KeyEvent.is_pressed ev = HalKeyEvent.is_pressed e.
Proof.
  intros E. cbn zeta. pose proof (translate_tracks _ es e (translate_all_tracks es)) as Ht.
  rewrite E in Ht. simpl in Ht. unfold KeyboardTranslator.translate in E.
  destruct (decide _); [done|]. injection E as <- <-.
  match type of Ht with tracks ?m _ => pose proof (to_modifiers_spec m) as Hm end.
  destruct Hm as (Hs & Hc & Ha & Hme & Hb). unfold tracks in Ht.
  split_and!; [etrans; [exact Hs|]|etrans; [exact Hc|]|etrans; [exact Ha|]|etrans; [exact Hme|]| | |];
    try done; try (by rewrite Ht).
  by destruct e as [? []].
Qed.

Lemma modifiers_are_the_held_keys_witness :
  let ev := KeyEvent.new KeyCode.A (Modifiers.with_ Modifiers.CTRL Modifiers.SHIFT) KeyState.Pressed in
  KeyboardTranslator.translate (HalKeyEvent.new 0x1E true)
    (translate_all [HalKeyEvent.new 0x2A true; HalKeyEvent.new 0x1D true; HalKeyEvent.new 0x38 true;
                    HalKeyEvent.new 0x38 false] KeyboardTranslator.new)
  = (Some ev, KeyboardTranslator.mk (ModifierState.mk true false true false false false false false)) ∧
  Modifiers.is_shift (KeyEvent.modifiers ev) = true ∧ Modifiers.is_alt (KeyEvent.modifiers ev) = false.
Proof.
  split; [reflexivity|].
  destruct (modifiers_are_the_held_keys
    [HalKeyEvent.new 0x2A true; HalKeyEvent.new 0x1D true; HalKeyEvent.new 0x38 true;
     HalKeyEvent.new 0x38 false] (HalKeyEvent.new 0x1E true) _ _ eq_refl) as (H1 & _ & H3 & _).
  split; [exact H1|exact H3].
Defined.
End KeyboardSpec.

(** ** Subscriptions *)
Module InputOp.
Inductive t :=
| Subscribe (task : TaskId.t) (channel : ChannelId.t)
| Revoke (cap : InputSubscriptionCap.t)
| Unsubscribe (cap : InputSubscriptionCap.t).
Definition run (s : InputService.t) (o : t) : outcome InputService.t :=
  match o with
  | Subscribe task ch => '(_, s) ← InputService.subscribe_keyboard task ch s; Return s
  | Revoke cap => Return (InputService.revoke_subscription cap s).2
  | Unsubscribe cap => Return (InputService.unsubscribe cap s).2
  end.
End InputOp.

Module InputSpec.
(** The two tables describe the same subscriptions, and identifiers are not reused. *)
Record consistent (s : InputService.t) : Prop := {
  con_key : map_Forall (λ id sub, InputSubscriptionCap.id (Subscription.cap sub) = id ∧
                                  id < InputService.next_subscription_id s)
                       (InputService.subscriptions s);
  con_task : ∀ t id, InputService.task_subscriptions s !! t = Some id ↔
    ∃ sub, InputService.subscriptions s !! id = Some sub ∧
           InputSubscriptionCap.task_id (Subscription.cap sub) = t
}.

Lemma lookup_cap_Ok cap s sub :
  InputService.lookup_cap cap s = Ok sub ↔
  InputService.subscriptions s !! InputSubscriptionCap.id cap = Some sub ∧
  InputSubscriptionCap.task_id (Subscription.cap sub) = InputSubscriptionCap.task_id cap.
Proof.
  unfold InputService.lookup_cap. destruct (InputService.subscriptions s !! _) as [sub'|]; [|split; [done|intros [? _]; done]].
  destruct (decide _) as [H|H]; [split; [done|intros [[= <-] ?]; done]|].
  apply dec_stable in H. split; [by intros [= <-]|by intros [[= <-] _]].
Qed.

Lemma subscribe_consistent task ch s r s' :
  consistent s → InputService.subscribe_keyboard task ch s = Return (r, s') → consistent s'.
Proof.
  intros [Hk Ht]. unfold InputService.subscribe_keyboard.
  destruct (InputService.task_subscriptions s !! task) as [id|] eqn:Et; [by intros [= <- <-]|].
  intros (n & [-> Hn]%add_u64_Return & [= <- <-])%bind_Return.
  assert (InputService.subscriptions s !! InputService.next_subscription_id s = None) as Hfresh.
  { destruct (InputService.subscriptions s !! _) as [sub|] eqn:E; [|done]. apply Hk in E. lia. }
  split; cbn.
  - apply map_Forall_insert_2; [cbn; lia|]. eapply map_Forall_impl; [exact Hk|]. intros i sub [? ?]. lia.
  - intros t id. destruct (decide (t = task)) as [->|Hne].
    + rewrite lookup_insert_eq. split.
      * intros [= <-]. rewrite lookup_insert_eq. eexists. split; [done|done].
      * intros (sub & Hs & Hst). destruct (decide (id = InputService.next_subscription_id s)) as [->|Hni];
          [done|]. rewrite lookup_insert_ne in Hs by done.
        pose proof (proj2 (Ht task id) (ex_intro _ sub (conj Hs Hst))). congruence.
    + rewrite lookup_insert_ne, Ht by done. split.
      * intros (sub & Hs & Hst). exists sub. split; [|done]. rewrite lookup_insert_ne; [done|congruence].
      * intros (sub & Hs & Hst). exists sub. split; [|done].
        destruct (decide (id = InputService.next_subscription_id s)) as [->|Hni].
        -- rewrite lookup_insert_eq in Hs. injection Hs as <-. done.
        -- by rewrite lookup_insert_ne in Hs.
Qed.

Lemma revoke_consistent cap s : consistent s → consistent (InputService.revoke_subscription cap s).2.
Proof.
  intros [Hk Ht]. unfold InputService.revoke_subscription.
  destruct (InputService.lookup_cap cap s) as [sub|e] eqn:E; [|done].
  apply lookup_cap_Ok in E as [Es Et]. split; cbn.
  - apply map_Forall_insert_2; [|done]. by apply Hk in Es.
  - intros t id. rewrite Ht. destruct (decide (id = InputSubscriptionCap.id cap)) as [->|Hne].
    + rewrite lookup_insert_eq, Es. naive_solver.
    + by rewrite lookup_insert_ne.
Qed.

Lemma unsubscribe_consistent cap s : consistent s → consistent (InputService.unsubscribe cap s).2.
Proof.
  intros [Hk Ht]. unfold InputService.unsubscribe.
  destruct (InputService.lookup_cap cap s) as [sub|e] eqn:E; [|done].
  apply lookup_cap_Ok in E as [Es Et]. split; cbn; [by apply map_Forall_delete|].
  intros t id. rewrite lookup_delete_Some, Ht.
  pose proof (proj2 (Ht _ _) (ex_intro _ sub (conj Es Et))) as Hcap. split.
  - intros (Hne & sub' & Hs & Hst). exists sub'. split; [|done].
    rewrite lookup_delete_ne; [done|]. intros <-. congruence.
  - intros (sub' & Hs & Hst). apply lookup_delete_Some in Hs as [Hne Hs].
    split; [|eauto]. intros <-.
    pose proof (proj2 (Ht _ _) (ex_intro _ sub' (conj Hs Hst))). congruence.
Qed.

Lemma run_consistent s o s' : consistent s → InputOp.run s o = Return s' → consistent s'.
Proof.
  intros H. destruct o as [task ch|cap|cap]; cbn [InputOp.run].
  - intros ([r s1] & E & [= <-])%bind_Return. by eapply subscribe_consistent.
  - intros [= <-]. by apply revoke_consistent.
  - intros [= <-]. by apply unsubscribe_consistent.
Qed.

Lemma new_consistent : consistent InputService.new.
Proof. split; [done|]. cbn. intros t id. rewrite lookup_empty. naive_solver. Qed.

(** The tables of the input service agree.  After any history of subscriptions,
    revocations and cancellations, with genuine or forged capabilities, the table by task and
    the table by identifier describe the same subscriptions: a task is listed with exactly the
    subscription that names it, so no task has two, and every subscription is found under the
    identifier of its own capability. *)
Theorem input_tables_agree (ops : list InputOp.t) (s : InputService.t) :
  fold_outcome InputOp.run ops InputService.new = Return s →
  (∀ t cap, InputService.get_task_subscription t s = Some cap →
     InputSubscriptionCap.task_id cap = t ∧
     InputService.subscriptions s !! InputSubscriptionCap.id cap ≠ None) ∧
  (∀ t id, InputService.task_subscriptions s !! t = Some id ↔
     ∃ sub, InputService.subscriptions s !! id = Some sub ∧
            InputSubscriptionCap.task_id (Subscription.cap sub) = t) ∧
  (∀ i j a b, InputService.subscriptions s !! i = Some a → InputService.subscriptions s !! j = Some b →
     InputSubscriptionCap.task_id (Subscription.cap a) = InputSubscriptionCap.task_id (Subscription.cap b) →
     i = j).
Proof.
  intros E.
  assert (consistent s) as [Hk Ht].
  { eapply (fold_outcome_ind consistent); [apply new_consistent| |exact E].
    intros s1 o s2 _. apply run_consistent. }
  split_and!; [|done|].
  - intros t cap. unfold InputService.get_task_subscription.
    destruct (InputService.task_subscriptions s !! t) as [id|] eqn:Et; [|done]. cbn.
    apply Ht in Et as (sub & Es & Est). rewrite Es. intros [= <-]. split; [done|].
    apply Hk in Es as Hid. destruct Hid as [-> _]. by rewrite Es.
  - intros i j a b Ha Hb Hab.
    pose proof (proj2 (Ht _ _) (ex_intro _ a (conj Ha Hab))).
    pose proof (proj2 (Ht _ _) (ex_intro _ b (conj Hb eq_refl))). congruence.
Qed.

Definition sample_ops : list InputOp.t :=
  [InputOp.Subscribe (TaskId.mk 1) (ChannelId.mk 11); InputOp.Subscribe (TaskId.mk 2) (ChannelId.mk 12);
   InputOp.Revoke (InputSubscriptionCap.new 1 (TaskId.mk 2) (ChannelId.mk 0));
   InputOp.Unsubscribe (InputSubscriptionCap.new 1 (TaskId.mk 1) (ChannelId.mk 0))].
Definition sample_service : InputService.t :=
  InputService.mk 3
    {[2 := Subscription.new (InputSubscriptionCap.new 2 (TaskId.mk 2) (ChannelId.mk 12))]}
    {[TaskId.mk 2 := 2]}.
Lemma input_tables_agree_witness :
  fold_outcome InputOp.run sample_ops InputService.new = Return sample_service ∧
  ∀ t cap, InputService.get_task_subscription t sample_service = Some cap →
     InputSubscriptionCap.task_id cap = t.
Proof.
  assert (fold_outcome InputOp.run sample_ops InputService.new = Return sample_service) as E
    by (vm_compute; reflexivity).
  split; [exact E|]. destruct (input_tables_agree sample_ops _ E) as [H _].
  intros t cap Hc. exact (proj1 (H t cap Hc)).
Defined.

(** *** Revocation *)

(** The subscription with this identifier delivers nothing and never will. *)
Definition silent (id : N) (s : InputService.t) : Prop :=
  id < InputService.next_subscription_id s ∧
  ∀ sub, InputService.subscriptions s !! id = Some sub → Subscription.active sub = false.

Lemma run_silent id s o s' : silent id s → InputOp.run s o = Return s' → silent id s'.
Proof.
  intros [Hlt Hs]. destruct o as [task ch|cap|cap]; cbn [InputOp.run].
  - intros ([r s1] & E & [= <-])%bind_Return. unfold InputService.subscribe_keyboard in E.
    destruct (InputService.task_subscriptions s !! task); [by injection E as <- <-|].
    apply bind_Return in E as (n & [-> _]%add_u64_Return & E). injection E as <- <-. split; cbn; [lia|].
    rewrite lookup_insert_ne by lia. done.
  - intros [= <-]. unfold InputService.revoke_subscription.
    destruct (InputService.lookup_cap cap s) as [sub|e] eqn:E; [|done]. split; cbn; [done|].
    intros sub' [[_ <-]|[_ ?]]%lookup_insert_Some; eauto.
  - intros [= <-]. unfold InputService.unsubscribe.
    destruct (InputService.lookup_cap cap s) as [sub|e] eqn:E; [|done]. split; cbn; [done|].
    intros sub' [_ ?]%lookup_delete_Some; eauto.
Qed.

Lemma silent_delivers_nothing `{InputEventSink Snk} cap event s (sink : Snk) :
  silent (InputSubscriptionCap.id cap) s →
  InputService.is_subscription_active cap s = false ∧
  ∃ r, InputService.deliver_event_with cap event s sink = Return (r, sink) ∧ r ≠ Ok true.
Proof.
  intros [_ Hs]. unfold InputService.is_subscription_active, InputService.deliver_event_with,
    InputService.deliver_event, InputService.lookup_cap.
  destruct (InputService.subscriptions s !! _) as [sub|]; [|split; [done|eexists; split; [done|done]]].
  rewrite (Hs sub eq_refl). split; [done|].
  destruct (decide _); cbn; [|rewrite (Hs sub eq_refl)]; eexists; (split; [done|done]).
Qed.

(** A revoked or cancelled subscription never receives an event again.  Once
    [revoke_subscription] or [unsubscribe] has accepted a capability, whatever further
    subscriptions, revocations and cancellations follow, delivering to it leaves every sink
    untouched and does not report success: identifiers are never given out twice. *)
Theorem revoked_subscription_stays_silent `{InputEventSink Snk} (s0 s1 s2 : InputService.t)
    (o : InputOp.t) (cap : InputSubscriptionCap.t) (ops : list InputOp.t) event (sink : Snk) :
  consistent s0 →
  o = InputOp.Revoke cap ∨ o = InputOp.Unsubscribe cap →
  is_ok (InputService.lookup_cap cap s0) = true →
  InputOp.run s0 o = Return s1 →
  fold_outcome InputOp.run ops s1 = Return s2 →
  InputService.is_subscription_active cap s2 = false ∧
  ∃ r, InputService.deliver_event_with cap event s2 sink = Return (r, sink) ∧ r ≠ Ok true.
Proof.
  intros [Hk _] Ho Hok E1 E2. apply silent_delivers_nothing.
  eapply (fold_outcome_ind (silent (InputSubscriptionCap.id cap))); [|intros ? ? ? _; apply run_silent|exact E2].
  destruct (InputService.lookup_cap cap s0) as [sub|e] eqn:El; [|done].
  apply lookup_cap_Ok in El as El'. destruct El' as [Es _]. apply Hk in Es as [_ Hlt].
  destruct Ho as [-> | ->]; cbn in E1; injection E1 as <-;
    unfold InputService.revoke_subscription, InputService.unsubscribe; rewrite El; (split; [done|]); cbn.
  - rewrite lookup_insert_eq. by intros ? [= <-].
  - rewrite lookup_delete_eq. done.
Qed.

(** A sink that counts, to evaluate examples. *)
#[local] Instance counting_sink : InputEventSink nat := λ _ _ n, Return (Ok tt, S n).
Definition some_key : InputEvent.t := InputEvent.key (KeyEvent.pressed KeyCode.A Modifiers.none).
Lemma revoked_subscription_stays_silent_witness :
  let cap := InputSubscriptionCap.new 2 (TaskId.mk 2) (ChannelId.mk 12) in
  InputService.deliver_event_with cap some_key sample_service 0%nat = Return (Ok true, 1%nat) ∧
  ∃ s1 s2, InputOp.run sample_service (InputOp.Unsubscribe cap) = Return s1 ∧
    fold_outcome InputOp.run [InputOp.Subscribe (TaskId.mk 2) (ChannelId.mk 12)] s1 = Return s2 ∧
    ∃ r, InputService.deliver_event_with cap some_key s2 0%nat = Return (r, 0%nat) ∧ r ≠ Ok true.
Proof.
  intros cap. split; [reflexivity|]. eexists _, _. split; [reflexivity|]. split; [reflexivity|].
  refine (proj2 (revoked_subscription_stays_silent sample_service _ _ (InputOp.Unsubscribe cap) cap
    [InputOp.Subscribe (TaskId.mk 2) (ChannelId.mk 12)] some_key 0%nat _ (or_intror eq_refl) eq_refl
    eq_refl eq_refl)).
  eapply (fold_outcome_ind consistent InputOp.run sample_ops); [apply new_consistent| |vm_compute; reflexivity].
  intros ? ? ? _. apply run_consistent.
Defined.
End InputSpec.

(** ** Focus *)
Module FocusOp.
Inductive t :=
| Request (cap : InputSubscriptionCap.t)
| Release
| Remove (cap : InputSubscriptionCap.t).
Definition run (m : FocusManager.t) (o : t) : outcome FocusManager.t :=
  match o with
  | Request cap => '(_, m) ← FocusManager.request_focus cap m; Return m
  | Release => '(_, m) ← FocusManager.release_focus m; Return m
  | Remove cap => '(_, m) ← FocusManager.remove_subscription cap m; Return m
  end.
End FocusOp.

Module FocusSpec.
(** Removing the first occurrence. *)
Fixpoint remove_first (x : N) (l : list N) : list N :=
  match l with
  | [] => []
  | y :: l => if decide (y = x) then l else y :: remove_first x l
  end.
(** What an auditor concludes from one event about the stack of identifiers; [None] when the
    event does not fit. *)
Definition replay (st : option (list N)) (e : FocusEvent.t) : option (list N) :=
  l ← st;
  match e, l with
  | FocusEvent.Granted id _, [] => Some [id]
  | FocusEvent.Transferred from to _, top :: _ =>
      if decide (top = from ∧ to ≠ from) then Some (to :: l) else None
  | FocusEvent.Released id _, _ => if decide (id ∈ l) then Some (remove_first id l) else None
  | _, _ => None
  end.
Definition event_time (e : FocusEvent.t) : N :=
  match e with
  | FocusEvent.Granted _ t | FocusEvent.Transferred _ _ t | FocusEvent.Released _ t
  | FocusEvent.Denied _ _ t => t
  end.
Definition stack_ids (m : FocusManager.t) : list N := InputSubscriptionCap.id <$> FocusManager.focus_stack m.

(** The audit trail explains the stack; its times increase and are all past. *)
Record audited (m : FocusManager.t) : Prop := {
  aud_stack : foldl replay (Some []) (FocusManager.audit_trail m) = Some (stack_ids m);
  aud_sorted : StronglySorted N.lt (event_time <$> FocusManager.audit_trail m);
  aud_past : Forall (λ e, event_time e < FocusManager.next_timestamp m) (FocusManager.audit_trail m)
}.

(** Recording an event with the next timestamp. *)
Lemma audited_record m stack e t :
  audited m → t = FocusManager.next_timestamp m → event_time e = t →
  replay (Some (stack_ids m)) e = Some (InputSubscriptionCap.id <$> stack) →
  audited (FocusManager.mk stack (FocusManager.audit_trail m ++ [e]) (t + 1)).
Proof.
  intros [Hs Ho Hp] -> He Hr. split; cbn.
  - by rewrite foldl_snoc, Hs.
  - rewrite fmap_app. cbn. apply StronglySorted_app. split_and!; [| done |repeat constructor].
    intros x y Hx Hy. apply list_elem_of_singleton in Hy as ->. rewrite He.
    apply list_elem_of_fmap in Hx as (e' & -> & Hin). rewrite Forall_forall in Hp. by apply Hp.
  - apply Forall_app. split; [|repeat constructor; lia].
    eapply Forall_impl; [exact Hp|]. intros e' ?. cbn in *. lia.
Qed.

Lemma audited_skip m n : FocusManager.next_timestamp m ≤ n → audited m →
  audited (m <| FocusManager.next_timestamp := n |>).
Proof.
  intros Hn [Hs Ho Hp]. split; [done|done|]. cbn. eapply Forall_impl; [exact Hp|]. intros e ?. cbn in *. lia.
Qed.

Lemma delete_remove_first cap l pos c :
  list_find (λ c, InputSubscriptionCap.id c = InputSubscriptionCap.id cap) l = Some (pos, c) →
  InputSubscriptionCap.id cap ∈ (InputSubscriptionCap.id <$> l) ∧
  remove_first (InputSubscriptionCap.id cap) (InputSubscriptionCap.id <$> l)
  = InputSubscriptionCap.id <$> delete pos l.
Proof.
  revert pos. induction l as [|x l IH]; intros pos; cbn; [done|].
  destruct (decide (InputSubscriptionCap.id x = _)) as [E|E].
  - intros [= <- <-]. split; [rewrite E; by left|done].
  - destruct (list_find _ l) as [[i y]|] eqn:Ef; [|done]. intros [= <- <-].
    destruct (IH i eq_refl) as [Hin Hr]. split; [by right|]. cbn. by rewrite Hr.
Qed.

Lemma take_timestamp_Return m ts m' :
  FocusManager.take_timestamp m = Return (ts, m') ↔
  ts = FocusManager.next_timestamp m ∧
  m' = m <| FocusManager.next_timestamp := FocusManager.next_timestamp m + 1 |> ∧
  FocusManager.next_timestamp m + 1 ≤ u64_max.
Proof.
  unfold FocusManager.take_timestamp. rewrite bind_Return. setoid_rewrite add_u64_Return. naive_solver.
Qed.

Lemma run_audited m o m' : audited m → FocusOp.run m o = Return m' → audited m'.
Proof.
  intros H. destruct o as [cap| |cap]; cbn [FocusOp.run]; intros ([r m1] & E & [= <-])%bind_Return.
  - unfold FocusManager.request_focus in E.
    apply bind_Return in E as ([ts m2] & (-> & -> & _)%take_timestamp_Return & E). cbn in E.
    destruct (FocusManager.focus_stack m) as [|c l] eqn:Es.
    + injection E as <- <-. apply (audited_record m _ _ (FocusManager.next_timestamp m)); [done..|]. unfold stack_ids. cbn. by rewrite Es.
    + destruct (N.eqb_spec (InputSubscriptionCap.id c) (InputSubscriptionCap.id cap)) as [Ei|Ei];
        injection E as <- <-; [apply audited_skip; [lia|done]|].
      apply (audited_record m _ _ (FocusManager.next_timestamp m)); [done..|]. unfold stack_ids. cbn. rewrite Es. cbn. by rewrite decide_True.
  - unfold FocusManager.release_focus in E.
    destruct (FocusManager.focus_stack m) as [|c l] eqn:Es; [by injection E as <- <-|].
    apply bind_Return in E as ([ts m2] & (-> & -> & _)%take_timestamp_Return & E). cbn in E.
    injection E as <- <-. apply (audited_record m _ _ (FocusManager.next_timestamp m)); [done..|]. unfold stack_ids. cbn. rewrite ?Es. cbn.
    rewrite decide_True by (by left). by rewrite decide_True.
  - unfold FocusManager.remove_subscription in E.
    destruct (list_find _ _) as [[pos c]|] eqn:Ef; [|by injection E as <- <-].
    apply bind_Return in E as ([ts m2] & (-> & -> & _)%take_timestamp_Return & E). cbn in E.
    injection E as <- <-. apply delete_remove_first in Ef as [Hin Hr].
    apply (audited_record m _ _ (FocusManager.next_timestamp m)); [done..|]. cbn. rewrite decide_True by done. by rewrite <- Hr.
Qed.

(** The audit trail of the focus manager determines the focus stack.  After any history of
    requests, releases and removals, replaying the recorded events from the empty stack, with
    every event fitting the stack it meets, gives exactly the current stack; the events carry
    strictly increasing times.  In particular the trail tells which subscription receives the
    next key. *)
Theorem focus_trail_determines_stack (ops : list FocusOp.t) (m : FocusManager.t) :
  fold_outcome FocusOp.run ops FocusManager.new = Return m →
  foldl replay (Some []) (FocusManager.audit_trail m)
    = Some (InputSubscriptionCap.id <$> FocusManager.focus_stack m) ∧
  StronglySorted N.lt (event_time <$> FocusManager.audit_trail m) ∧
  ∀ event, (λ o, InputSubscriptionCap.id <$> o) <$> Some (FocusManager.current_focus m)
           = (λ l, head l) <$> foldl replay (Some []) (FocusManager.audit_trail m) ∧
           FocusManager.route_event event m = Ok (FocusManager.current_focus m).
Proof.
  intros E. assert (audited m) as [Hs Ho _].
  { apply (fold_outcome_ind audited FocusOp.run ops FocusManager.new); [split; [done|constructor|constructor]| |exact E].
    intros ? ? ? _. apply run_audited. }
  split_and!; [done|done|]. intros event. split; [|done]. rewrite Hs. cbn.
  unfold stack_ids, FocusManager.current_focus. by destruct (FocusManager.focus_stack m).
Qed.

Definition cap_of (n : N) : InputSubscriptionCap.t := InputSubscriptionCap.new n (TaskId.mk n) (ChannelId.mk n).
Definition focus_ops : list FocusOp.t :=
  [FocusOp.Request (cap_of 1); FocusOp.Request (cap_of 2); FocusOp.Request (cap_of 2);
   FocusOp.Request (cap_of 1); FocusOp.Remove (cap_of 1)].
Definition focus_state : FocusManager.t :=
  FocusManager.mk [cap_of 2; cap_of 1]
    [FocusEvent.Granted 1 0; FocusEvent.Transferred 1 2 1; FocusEvent.Transferred 2 1 3;
     FocusEvent.Released 1 4] 5.
Lemma focus_trail_determines_stack_witness :
  fold_outcome FocusOp.run focus_ops FocusManager.new = Return focus_state ∧
  foldl replay (Some []) (FocusManager.audit_trail focus_state) = Some [2; 1].
Proof.
  split; [reflexivity|]. exact (proj1 (focus_trail_determines_stack focus_ops focus_state eq_refl)).
Defined.

(** A removed subscription can regain the focus.  A subscription that took the focus twice
    with another in between is on the stack twice; [remove_subscription], meant for revoked
    subscriptions, removes only the upper entry, so that after the other one releases the focus
    keys are routed to the removed subscription again. *)
Theorem removed_subscription_regains_focus :
  ∃ m, fold_outcome FocusOp.run (focus_ops ++ [FocusOp.Release]) FocusManager.new = Return m ∧
       FocusManager.current_focus m = Some (cap_of 1) ∧
       FocusManager.has_focus (cap_of 1) m = true.
Proof. eexists. split; [reflexivity|]. split; reflexivity. Qed.
End FocusSpec.

(** ** The bridge *)
Module BridgeSpec.
Section with_device.
Context {D K : Type} `{KeyboardDevice D} `{UuidFormat} `{KernelApiV0 K} `{EventCodec}.
Implicit Types (b : InputHalBridge.t D) (k : K).

(** What the two halves of a poll leave alone. *)
Lemma next_event_keeps b ev b' :
  InputHalBridge.next_event b = Return (ev, b') →
  InputHalBridge.subscription b' = InputHalBridge.subscription b ∧
  InputHalBridge.task_id b' = InputHalBridge.task_id b ∧
  InputHalBridge.events_delivered b' = InputHalBridge.events_delivered b.
Proof.
  unfold InputHalBridge.next_event. intros ([he d] & _ & E)%bind_Return.
  destruct he as [he|]; [|by injection E as <- <-].
  cbn in E. destruct (KeyboardTranslator.translate he _) as [ke tr]. by injection E as <- <-.
Qed.

(** The bridge sends one message per key, and only to an active subscription.  When a poll
    returns, either it did not touch the kernel and does not report a delivery, or the
    subscription was active and exactly one message, the encoding of the event it read with
    the bridge's task as the source, went to the channel of the subscription; it reports a
    delivery exactly when the kernel accepted that message, and counts exactly those. *)
Theorem poll_sends_only_to_active drawn svc b k r b' k' :
  InputHalBridge.poll drawn svc b k = Return (r, (b', k')) →
  let cap := InputHalBridge.subscription b in
  (k' = k ∧ r ≠ Ok PollResult.EventDelivered ∧
   InputHalBridge.events_delivered b' = InputHalBridge.events_delivered b) ∨
  ∃ event envelope sent b1,
    InputHalBridge.next_event b = Return (Some event, b1) ∧
    InputService.is_subscription_active cap svc = true ∧
    build_input_event_envelope drawn event (Some (InputHalBridge.task_id b)) = Ok envelope ∧
    v0_send (InputSubscriptionCap.channel cap) envelope k = Return (sent, k') ∧
    (r = Ok PollResult.EventDelivered ↔ is_ok sent = true) ∧
    InputHalBridge.events_delivered b'
    = InputHalBridge.events_delivered b + (if is_ok sent then 1 else 0).
Proof.
  intros Hp cap. unfold InputHalBridge.poll in Hp. apply bind_Return in Hp as ([ev b1] & E1 & Hp).
  destruct (next_event_keeps _ _ _ E1) as (Es & Et & Ed). cbn in Hp.
  destruct ev as [event|]; [|injection Hp as <- <- <-; left; by rewrite Ed].
  rewrite Es, Et in Hp. fold cap in Hp.
  destruct (InputService.deliver_event cap event svc) as [[]|e] eqn:Ev;
    [|injection Hp as <- <- <-; left; by rewrite Ed..].
  destruct (build_input_event_envelope drawn event _) as [envelope|e] eqn:Eb;
    [|injection Hp as <- <- <-; left; by rewrite Ed].
  right. apply bind_Return in Hp as ([sent k1] & Esend & Hp). exists event, envelope, sent, b1.
  assert (InputService.is_subscription_active cap svc = true) as Hact.
  { unfold InputService.deliver_event, InputService.lookup_cap in Ev.
    unfold InputService.is_subscription_active. destruct (InputService.subscriptions svc !! _) as [sub|]; [|done].
    destruct (decide _) as [Hn|Hn]; [done|]. injection Ev as ->. apply dec_stable in Hn.
    by rewrite bool_decide_true. }
  destruct sent as [[]|e]; cbn in Hp.
  - apply bind_Return in Hp as (n & [-> _]%add_u64_Return & Hp). injection Hp as <- <- <-.
    rewrite Ed. split_and!; done.
  - injection Hp as <- <- <-. rewrite Ed. split_and!; try done. cbn. lia.
Qed.

(** Polling through the kernel sink is polling the kernel.  [poll_with_sink] with a
    [KernelInputSink] for the bridge's own task leaves the same bridge and the same kernel as
    [poll], panics exactly when it does, reports a delivery or the lack of one alike and fails
    exactly when it fails; only the kind of error differs. *)
Theorem poll_with_sink_refines_poll drawn svc b k :
  match InputHalBridge.poll drawn svc b k,
        InputHalBridge.poll_with_sink svc b
          (KernelInputSink.new k (Some (InputHalBridge.task_id b)) drawn) with
  | Return (r1, (b1, k1)), Return (r2, (b2, sink)) =>
      b1 = b2 ∧ KernelInputSink.kernel sink = k1 ∧
      match r1, r2 with
      | Ok p1, Ok p2 => p1 = p2
      | Err _, Err _ => True
      | _, _ => False
      end
  | Panic, Panic | Diverge, Diverge => True
  | _, _ => False
  end.
Proof.
  unfold InputHalBridge.poll, InputHalBridge.poll_with_sink.
  destruct (InputHalBridge.next_event b) as [[ev b1]| |] eqn:E1; cbn; [|done..].
  destruct (next_event_keeps _ _ _ E1) as (Es & Et & Ed).
  destruct ev as [event|]; [|done].
  unfold InputService.deliver_event_with.
  destruct (InputService.deliver_event _ event svc) as [[]|e]; cbn; [|done..].
  unfold send_event, KernelInputSink.sink. cbn. rewrite <- Et.
  destruct (build_input_event_envelope drawn event _) as [envelope|e]; cbn; [|done].
  destruct (v0_send _ envelope k) as [[[[]|e] k1]| |]; cbn; try done.
  by destruct (add_u64 _ 1).
Qed.
End with_device.

(** A keyboard of queued events, a kernel that records what is sent (up to two messages) and
    a codec that writes the position of the key, to evaluate examples. *)
#[local] Instance queued_keyboard : KeyboardDevice (list HalKeyEvent.t) := λ l, Return (head l, tail l).
Definition mailbox : Type := list (ChannelId.t * MessageEnvelope.t).
Definition no_call {A} (k : mailbox) : outcome (result A KernelError.t * mailbox) :=
  Return (Err KernelError.Timeout, k).
#[local] Instance mailbox_kernel : KernelApiV0 mailbox := {|
  v0_create_task _ _ _ := no_call;
  v0_create_channel _ := no_call;
  v0_send ch m k := Return (if (length k <? 2)%nat then (Ok tt, k ++ [(ch, m)])
                            else (Err (KernelError.SendFailed "full"), k));
  v0_recv _ := no_call;
  v0_yield_now := no_call;
  v0_sleep _ := no_call;
  v0_grant _ _ := no_call
|}.
#[local] Instance position_codec : EventCodec := λ e,
  match e with
  | InputEvent.Key e => Ok (MessagePayload.mk [N.of_nat (KeyCode.to_nat (KeyEvent.code e))])
  end.
#[local] Existing Instance sample_format.
Definition sample_bridge : InputHalBridge.t (list HalKeyEvent.t) :=
  InputHalBridge.new (ExecutionId.mk 5) (TaskId.mk 5)
    (InputSubscriptionCap.new 2 (TaskId.mk 2) (ChannelId.mk 12)) [HalKeyEvent.new 0x1E true].

Lemma poll_sends_only_to_active_witness :
  match InputHalBridge.poll (MessageId.mk 7) InputSpec.sample_service sample_bridge [] with
  | Return (r, (b', k')) =>
      r = Ok PollResult.EventDelivered ∧ length k' = 1%nat ∧
      ((k' = [] ∧ r ≠ Ok PollResult.EventDelivered ∧ InputHalBridge.events_delivered b' = 0) ∨
       InputService.is_subscription_active (InputHalBridge.subscription sample_bridge)
         InputSpec.sample_service = true)
  | _ => False
  end.
Proof.
  destruct (InputHalBridge.poll _ _ sample_bridge []) as [[r [b' k']]| |] eqn:E;
    [|discriminate E|discriminate E].
  pose proof (poll_sends_only_to_active _ _ _ _ _ _ _ E) as H.
  split; [injection E as <- <- <-; reflexivity|]. split; [injection E as <- <- <-; reflexivity|].
  destruct H as [H|(ev & en & sent & b1 & _ & H & _)]; [left; exact H|right; exact H].
Defined.
End BridgeSpec.
