(* ===== verification/Consensus.v ===== *)
(** * Replicated and synchronised storage

    [distributed_storage/src/consensus.rs]: the nodes of a Raft-like replicated log and the
    in-process cluster that passes their messages; [distributed_storage/src/lib.rs]: the logs
    of several devices, their merge and compaction. *)

From S2P Require Import Prelude Storage.
Open Scope string_scope.
Open Scope list_scope.
Open Scope N_scope.

(** [HashMap::iter_mut] with a body that rewrites the value and threads a state. *)
Definition iter_mut `{HashOrder} `{Countable K} {A S} (f : K → A → S → outcome (A * S))
    (m : gmap K A) (s : S) : outcome (gmap K A * S) :=
  fold_outcome (λ '(m, s) '(k, a), '(a, s) ← f k a s; Return (<[k := a]> m, s)) (hm_iter m) (m, s).

(** ** Nodes ([consensus.rs]) *)

Module ConsensusNodeId.
(* distributed_storage/src/consensus.rs:31-38 ConsensusNodeId *)
Record t := mk { uuid : Uuid }.
#[global] Instance eq_dec : EqDecision t.
Proof. solve_decision. Defined.
#[global] Program Instance countable : Countable t := inj_countable' uuid mk _.
Next Obligation. by intros []. Qed.
End ConsensusNodeId.

Module NodeState.
(* distributed_storage/src/consensus.rs:46-51 NodeState *)
Inductive t := Follower | Candidate | Leader.
#[global] Instance eq_dec : EqDecision t.
Proof. solve_decision. Defined.
End NodeState.

Module LogEntry.
(* distributed_storage/src/consensus.rs:53-59 LogEntry *)
Record t := mk { term : N; index : N; payload : list N; timestamp_ns : N }.
#[global] Instance eq_dec : EqDecision t.
Proof. solve_decision. Defined.
End LogEntry.

Module VoteRequest.
(* distributed_storage/src/consensus.rs:61-67 VoteRequest *)
Record t := mk {
  term : N;
  candidate_id : ConsensusNodeId.t;
  last_log_index : N;
  last_log_term : N
}.
End VoteRequest.

Module VoteResponse.
(* distributed_storage/src/consensus.rs:69-73 VoteResponse *)
Record t := mk { term : N; vote_granted : bool }.
End VoteResponse.

Module AppendEntriesRequest.
(* distributed_storage/src/consensus.rs:75-83 AppendEntriesRequest *)
Record t := mk {
  term : N;
  leader_id : ConsensusNodeId.t;
  prev_log_index : N;
  prev_log_term : N;
  entries : list LogEntry.t;
  leader_commit : N
}.
End AppendEntriesRequest.

Module AppendEntriesResponse.
(* distributed_storage/src/consensus.rs:85-90 AppendEntriesResponse *)
Record t := mk { term : N; success : bool; match_index : N }.
End AppendEntriesResponse.

Module ConsensusError.
(* distributed_storage/src/consensus.rs:92-102 ConsensusError *)
Inductive t := NodeNotFound (id : ConsensusNodeId.t) | LeaderRequired | QuorumNotReached.
End ConsensusError.

Module ConsensusNode.
(* distributed_storage/src/consensus.rs:104-113 ConsensusNode *)
Record t := mk {
  id : ConsensusNodeId.t;
  state : NodeState.t;
  current_term : N;
  voted_for : option ConsensusNodeId.t;
  log : list LogEntry.t;
  commit_index : N;
  last_applied : N
}.
#[global] Instance rebuild_t : Rebuild t := λ n,
  mk (id n) (state n) (current_term n) (voted_for n) (log n) (commit_index n) (last_applied n).
(* distributed_storage/src/consensus.rs:116-126 ConsensusNode::new *)
Definition new (id : ConsensusNodeId.t) : t := mk id NodeState.Follower 0 None [] 0 0.
(* distributed_storage/src/consensus.rs:128-130 ConsensusNode::last_log_index *)
Definition last_log_index (n : t) : N := from_option LogEntry.index 0 (last (log n)).
(* distributed_storage/src/consensus.rs:132-134 ConsensusNode::last_log_term *)
Definition last_log_term (n : t) : N := from_option LogEntry.term 0 (last (log n)).
(* distributed_storage/src/consensus.rs:136-146 ConsensusNode::become_candidate *)
Definition become_candidate (n : t) : outcome (VoteRequest.t * t) :=
  term ← add_u64 (current_term n) 1;
  let n := n <| state := NodeState.Candidate |> <| current_term := term |>
             <| voted_for := Some (id n) |> in
  Return (VoteRequest.mk term (id n) (last_log_index n) (last_log_term n), n).
(* distributed_storage/src/consensus.rs:148-150 ConsensusNode::become_leader *)
Definition become_leader (n : t) : t := n <| state := NodeState.Leader |>.
(* distributed_storage/src/consensus.rs:152-181 ConsensusNode::handle_request_vote *)
Definition handle_request_vote (r : VoteRequest.t) (n : t) : VoteResponse.t * t :=
  if VoteRequest.term r <? current_term n then (VoteResponse.mk (current_term n) false, n)
  else
    let n := if current_term n <? VoteRequest.term r
             then n <| current_term := VoteRequest.term r |> <| voted_for := None |>
                    <| state := NodeState.Follower |>
             else n in
    let up_to_date :=
      (last_log_term n <? VoteRequest.last_log_term r)
      || ((VoteRequest.last_log_term r =? last_log_term n)
          && (last_log_index n <=? VoteRequest.last_log_index r)) in
    let can_vote := bool_decide (voted_for n = None)
                    || bool_decide (voted_for n = Some (VoteRequest.candidate_id r)) in
    let vote_granted := can_vote && up_to_date in
    let n := if vote_granted then n <| voted_for := Some (VoteRequest.candidate_id r) |> else n in
    (VoteResponse.mk (current_term n) vote_granted, n).
(** One turn of the loop over the entries; [entry.index - 1] is checked. *)
(* distributed_storage/src/consensus.rs:213-222 ConsensusNode::handle_append_entries *)
Definition append_entry (l : list LogEntry.t) (entry : LogEntry.t) : outcome (list LogEntry.t) :=
  i ← sub_u64 (LogEntry.index entry) 1;
  match l !! N.to_nat i with
  | Some existing =>
      if LogEntry.term existing =? LogEntry.term entry then Return l
      else Return (take (N.to_nat i) l ++ [entry])
  | None => Return (l ++ [entry])
  end.
(* distributed_storage/src/consensus.rs:183-233 ConsensusNode::handle_append_entries *)
Definition handle_append_entries (r : AppendEntriesRequest.t) (n : t)
    : outcome (AppendEntriesResponse.t * t) :=
  if AppendEntriesRequest.term r <? current_term n
  then Return (AppendEntriesResponse.mk (current_term n) false (last_log_index n), n)
  else
    let n := if current_term n <? AppendEntriesRequest.term r
             then n <| current_term := AppendEntriesRequest.term r |> <| voted_for := None |>
             else n in
    let n := n <| state := NodeState.Follower |> in
    let prev_ok :=
      if 0 <? AppendEntriesRequest.prev_log_index r
      then match log n !! N.to_nat (AppendEntriesRequest.prev_log_index r - 1) with
           | None => false
           | Some prev => LogEntry.term prev =? AppendEntriesRequest.prev_log_term r
           end
      else true in
    if negb prev_ok
    then Return (AppendEntriesResponse.mk (current_term n) false (last_log_index n), n)
    else
      l ← fold_outcome append_entry (AppendEntriesRequest.entries r) (log n);
      let n := n <| log := l |> in
      let n := if commit_index n <? AppendEntriesRequest.leader_commit r
               then n <| commit_index := N.min (last_log_index n)
                                               (AppendEntriesRequest.leader_commit r) |>
               else n in
      Return (AppendEntriesResponse.mk (current_term n) true (last_log_index n), n).
End ConsensusNode.

(** ** The cluster *)

Module ConsensusCluster.
(* distributed_storage/src/consensus.rs:236-239 ConsensusCluster *)
Record t := mk { nodes : gmap ConsensusNodeId.t ConsensusNode.t }.
#[global] Instance rebuild_t : Rebuild t := λ c, mk (nodes c).
(* distributed_storage/src/consensus.rs:242-246 ConsensusCluster::new *)
Definition new : t := mk ∅.
(* distributed_storage/src/consensus.rs:248-250 ConsensusCluster::add_node *)
Definition add_node (n : ConsensusNode.t) (c : t) : t :=
  c <| nodes ::= <[ConsensusNode.id n := n]> |>.
(* distributed_storage/src/consensus.rs:252-254 ConsensusCluster::node *)
Definition node (id : ConsensusNodeId.t) (c : t) : option ConsensusNode.t := nodes c !! id.
(** [self.nodes.len() / 2 + 1]. *)
Definition quorum (c : t) : N := N.of_nat (size (nodes c)) / 2 + 1.

Section with_order.
Context `{HashOrder}.
(* distributed_storage/src/consensus.rs:260-290 ConsensusCluster::elect_leader *)
Definition elect_leader (candidate_id : ConsensusNodeId.t) (c : t)
    : outcome (result unit ConsensusError.t * t) :=
  match nodes c !! candidate_id with
  | None => Return (Err (ConsensusError.NodeNotFound candidate_id), c)
  | Some candidate =>
      '(request, candidate) ← ConsensusNode.become_candidate candidate;
      let c := c <| nodes ::= <[candidate_id := candidate]> |> in
      '(ns, votes) ← iter_mut (λ node_id node votes,
          if decide (node_id = candidate_id) then Return (node, votes)
          else
            let '(response, node) := ConsensusNode.handle_request_vote request node in
            if VoteResponse.vote_granted response
            then votes ← add_u64 votes 1; Return (node, votes) else Return (node, votes))
        (nodes c) 1;
      let c := c <| nodes := ns |> in
      if votes <? quorum c then Return (Err ConsensusError.QuorumNotReached, c)
      else Return (Ok tt, c <| nodes ::= alter ConsensusNode.become_leader candidate_id |>)
  end.
(* distributed_storage/src/consensus.rs:292-341 ConsensusCluster::replicate_entry *)
Definition replicate_entry (leader_id : ConsensusNodeId.t) (payload : list N) (timestamp_ns : N)
    (c : t) : outcome (result LogEntry.t ConsensusError.t * t) :=
  match nodes c !! leader_id with
  | None => Return (Err (ConsensusError.NodeNotFound leader_id), c)
  | Some leader =>
      if decide (ConsensusNode.state leader ≠ NodeState.Leader)
      then Return (Err ConsensusError.LeaderRequired, c)
      else
        let prev_index := ConsensusNode.last_log_index leader in
        let prev_term := ConsensusNode.last_log_term leader in
        let term := ConsensusNode.current_term leader in
        index ← add_u64 prev_index 1;
        let entry := LogEntry.mk term index payload timestamp_ns in
        let request := AppendEntriesRequest.mk term leader_id prev_index prev_term [entry] index in
        '(ns, successes) ← iter_mut (λ _ node successes,
            '(response, node) ← ConsensusNode.handle_append_entries request node;
            if AppendEntriesResponse.success response
            then successes ← add_u64 successes 1; Return (node, successes)
            else Return (node, successes))
          (nodes c) 0;
        let c := c <| nodes := ns |> in
        if successes <? quorum c then Return (Err ConsensusError.QuorumNotReached, c)
        else Return (Ok entry, c)
  end.
End with_order.
End ConsensusCluster.

(** ** Device logs ([lib.rs]) *)

Module DeviceId.
(* distributed_storage/src/lib.rs:39-52 DeviceId *)
Record t := mk { uuid : Uuid }.
#[global] Instance eq_dec : EqDecision t.
Proof. solve_decision. Defined.
#[global] Program Instance countable : Countable t := inj_countable' uuid mk _.
Next Obligation. by intros []. Qed.
End DeviceId.

Module VersionedObject.
(* distributed_storage/src/lib.rs:54-60 VersionedObject *)
Record t := mk {
  object_id : ObjectId.t;
  version_id : VersionId.t;
  payload : list N;
  timestamp_ns : N
}.
#[global] Instance eq_dec : EqDecision t.
Proof. solve_decision. Defined.
End VersionedObject.

Module DeviceLog.
(* distributed_storage/src/lib.rs:62-66 DeviceLog *)
Record t := mk { device_id : DeviceId.t; entries : list VersionedObject.t }.
#[global] Instance rebuild_t : Rebuild t := λ l, mk (device_id l) (entries l).
End DeviceLog.

Module SyncError.
(* distributed_storage/src/lib.rs:73-77 SyncError *)
Inductive t := DeviceNotFound (id : DeviceId.t).
End SyncError.

Module SyncState.
(* distributed_storage/src/lib.rs:68-71 SyncState *)
Record t := mk { logs : list DeviceLog.t }.
#[global] Instance rebuild_t : Rebuild t := λ s, mk (logs s).
Definition default : t := mk [].
(* distributed_storage/src/lib.rs:80-85 SyncState::add_device *)
Definition add_device (d : DeviceId.t) (s : t) : t := s <| logs ::= λ l, l ++ [DeviceLog.mk d []] |>.
(* distributed_storage/src/lib.rs:87-95 SyncState::append *)
Definition append (d : DeviceId.t) (entry : VersionedObject.t) (s : t) : result unit SyncError.t * t :=
  match list_find (λ log, DeviceLog.device_id log = d) (logs s) with
  | None => (Err (SyncError.DeviceNotFound d), s)
  | Some (i, log) =>
      (Ok tt, s <| logs ::= <[i := log <| DeviceLog.entries ::= λ l, l ++ [entry] |>]> |>)
  end.
(** [merged.entry(device).or_default().extend(entries)]. *)
Definition extend_log (m : gmap DeviceId.t (list VersionedObject.t)) (log : DeviceLog.t)
    : gmap DeviceId.t (list VersionedObject.t) :=
  <[DeviceLog.device_id log :=
      from_option id [] (m !! DeviceLog.device_id log) ++ DeviceLog.entries log]> m.
(* distributed_storage/src/lib.rs:97-112 SyncState::merge *)
Definition merge `{HashOrder} (other s : t) : t :=
  let merged := foldl extend_log ∅ (logs s ++ logs other) in
  mk ((λ '(d, entries), DeviceLog.mk d entries) <$> hm_iter merged).
(* distributed_storage/src/lib.rs:128-133 SyncState::all_entries *)
Definition all_entries (s : t) : list VersionedObject.t := logs s ≫= DeviceLog.entries.
(** One turn of the loop of [compact]. *)
Definition keep_latest (latest : gmap ObjectId.t VersionedObject.t) (entry : VersionedObject.t)
    : gmap ObjectId.t VersionedObject.t :=
  let replace := match latest !! VersionedObject.object_id entry with
                 | Some current => VersionedObject.timestamp_ns current
                                   <=? VersionedObject.timestamp_ns entry
                 | None => true
                 end in
  if replace : bool then <[VersionedObject.object_id entry := entry]> latest else latest.
(* distributed_storage/src/lib.rs:114-126 SyncState::compact *)
Definition compact (s : t) : gmap ObjectId.t VersionedObject.t :=
  foldl keep_latest ∅ (all_entries s).
(* distributed_storage/src/lib.rs:135-140 SyncState::version_set *)
Definition version_set (s : t) : gset VersionId.t :=
  list_to_set (VersionedObject.version_id <$> all_entries s).
End SyncState.
