(* ===== verification/ConsensusProps.v ===== *)
(** * Properties of the replicated log and of device synchronisation

    A node votes once per term, so two candidates cannot both win a term; an accepted append
    makes the follower's log agree with the leader's; the in-process cluster is one shared log;
    merged replicas compact to the same objects.  Three theorems state behaviour that the
    protocol does not intend. *)

From S2P Require Import Prelude Storage Consensus.
Open Scope N_scope.

(** ** The loop over a map *)
Section iter_mut.
Context `{HashOrder} `{Countable K} {A : Type}.
Implicit Types (m : gmap K A) (l : list (K * A)).

Definition set_all (g : K → A → A) (m : gmap K A) (l : list (K * A)) : gmap K A :=
  foldl (λ m '(k, a), <[k := g k a]> m) m l.

Lemma set_all_lookup g m l k :
  NoDup l.*1 →
  (∀ a, (k, a) ∈ l → set_all g m l !! k = Some (g k a)) ∧
  (k ∉ l.*1 → set_all g m l !! k = m !! k).
Proof.
  revert m. induction l as [|[k' a'] l IH]; intros m Hnd; cbn; [split; [set_solver|done]|].
  inversion_clear Hnd as [|?? Hk' Hnd']. destruct (IH (<[k' := g k' a']> m) Hnd') as [IH1 IH2].
  fold (set_all g (<[k' := g k' a']> m) l). split.
  - intros a [[= -> ->]|Hin]%elem_of_cons; [|by apply IH1].
    rewrite IH2 by done. apply lookup_insert_eq.
  - intros [Hne Hnin]%not_elem_of_cons. rewrite IH2 by done. by apply lookup_insert_ne.
Qed.

Lemma set_all_hm_iter g m : set_all g m (hm_iter m) = map_imap (λ k a, Some (g k a)) m.
Proof.
  apply map_eq. intros k. rewrite map_lookup_imap.
  destruct (set_all_lookup g m (hm_iter m) k (hm_iter_NoDup_fst m)) as [H1 H2].
  destruct (m !! k) as [a|] eqn:E; cbn.
  - apply H1. by apply elem_of_hm_iter.
  - rewrite H2; [done|]. rewrite elem_of_hm_iter_fst, E. by intros [? ?].
Qed.

(** A body that rewrites each value and counts some of the entries. *)
Lemma iter_mut_spec (f : K → A → N → outcome (A * N)) (g : K → A → A) (w : K → A → bool) m s :
  (∀ k a s, m !! k = Some a → s + 1 ≤ u64_max →
     f k a s = Return (g k a, s + if w k a then 1 else 0)) →
  s + N.of_nat (size m) ≤ u64_max →
  iter_mut f m s
  = Return (map_imap (λ k a, Some (g k a)) m,
            s + N.of_nat (length (filter (λ kv, w kv.1 kv.2 = true) (map_to_list m)))).
Proof.
  intros Hf Hs. unfold iter_mut. rewrite <- set_all_hm_iter, <- length_map_to_list in *.
  rewrite <- (Permutation_length (filter_Permutation _ _ _ (hm_iter_perm m))).
  rewrite <- (Permutation_length (hm_iter_perm m)) in Hs.
  assert (∀ k a, (k, a) ∈ hm_iter m → m !! k = Some a) as Hin by (intros; by apply elem_of_hm_iter).
  generalize m at 2 3. revert s Hs Hin.
  induction (hm_iter m) as [|[k a] l IH]; intros s Hs Hin m0;
    [cbn; do 2 f_equal; lia|].
  simpl in Hs. rewrite filter_cons. cbn [fold_outcome fst snd].
  rewrite Hf by (try (apply Hin; by left); lia). cbn [mbind outcome_bind].
  rewrite IH; [|destruct (w k a); lia|intros; apply Hin; by right].
  do 2 f_equal. destruct (w k a) eqn:Ew;
    [rewrite decide_True by done|rewrite decide_False by congruence]; cbn [length]; lia.
Qed.
End iter_mut.

(** ** Votes *)
Module NodeOp.
(** What can happen to a node, in any order and with any messages. *)
Inductive t :=
| Stand
| Vote (r : VoteRequest.t)
| Append (r : AppendEntriesRequest.t)
| Lead.
(** The node after it, and the vote that it gave: the term and the candidate. *)
Definition run (n : ConsensusNode.t) (o : t)
    : outcome (option (N * ConsensusNodeId.t) * ConsensusNode.t) :=
  match o with
  | Stand =>
      '(r, n) ← ConsensusNode.become_candidate n;
      Return (Some (VoteRequest.term r, VoteRequest.candidate_id r), n)
  | Vote r =>
      let '(a, n) := ConsensusNode.handle_request_vote r n in
      Return (if VoteResponse.vote_granted a
              then Some (VoteResponse.term a, VoteRequest.candidate_id r) else None, n)
  | Append r => '(_, n) ← ConsensusNode.handle_append_entries r n; Return (None, n)
  | Lead => Return (None, ConsensusNode.become_leader n)
  end.
(** A history with the votes given. *)
Definition step (s : list (N * ConsensusNodeId.t) * ConsensusNode.t) (o : t)
    : outcome (list (N * ConsensusNodeId.t) * ConsensusNode.t) :=
  '(v, n) ← run s.2 o; Return (s.1 ++ option_list v, n).
End NodeOp.

Module VoteSpec.
(** The votes given so far bind the node. *)
Definition bound (s : list (N * ConsensusNodeId.t) * ConsensusNode.t) : Prop :=
  (∀ t c, (t, c) ∈ s.1 → t ≤ ConsensusNode.current_term s.2 ∧
     (t = ConsensusNode.current_term s.2 → ConsensusNode.voted_for s.2 = Some c)) ∧
  (∀ t c1 c2, (t, c1) ∈ s.1 → (t, c2) ∈ s.1 → c1 = c2).

(** Moving on to a later term or staying with the vote keeps the binding. *)
Lemma bound_keep vs n n' :
  bound (vs, n) → ConsensusNode.current_term n ≤ ConsensusNode.current_term n' →
  (ConsensusNode.current_term n' = ConsensusNode.current_term n →
   ∀ c, ConsensusNode.voted_for n = Some c → ConsensusNode.voted_for n' = Some c) →
  bound (vs, n').
Proof.
  intros [Hb Hu] Hle Hk. split; [|done]. cbn in *. intros t c Hin. destruct (Hb t c Hin) as [H1 H2].
  split; [lia|]. intros ->. apply Hk; [lia|]. apply H2. lia.
Qed.

(** A new vote for the current term that agrees with an earlier one. *)
Lemma bound_vote vs n t0 c :
  bound (vs, n) → ConsensusNode.voted_for n = Some c → t0 = ConsensusNode.current_term n →
  bound (vs ++ [(t0, c)], n).
Proof.
  intros [Hb Hu] Hc ->. cbn in *. split; cbn.
  - intros t c'. rewrite elem_of_app, list_elem_of_singleton. intros [Hin|[= -> ->]]; [by apply Hb|]. done.
  - intros t c1 c2. rewrite !elem_of_app, !list_elem_of_singleton.
    intros [H1|H1] [H2|H2]; simplify_eq; try done.
    + by eapply Hu.
    + apply Hb in H1 as [_ H1]. specialize (H1 eq_refl). congruence.
    + apply Hb in H2 as [_ H2]. specialize (H2 eq_refl). congruence.
Qed.

Lemma append_keeps_vote r n a n' :
  ConsensusNode.handle_append_entries r n = Return (a, n') →
  ConsensusNode.current_term n ≤ ConsensusNode.current_term n' ∧
  (ConsensusNode.current_term n' = ConsensusNode.current_term n →
   ConsensusNode.voted_for n' = ConsensusNode.voted_for n).
Proof.
  unfold ConsensusNode.handle_append_entries.
  destruct (N.ltb_spec (AppendEntriesRequest.term r) (ConsensusNode.current_term n)); [by intros [= <- <-]|].
  destruct (N.ltb_spec (ConsensusNode.current_term n) (AppendEntriesRequest.term r)); cbn;
    (destruct (negb _); [intros [= <- <-]; cbn; split; [lia|lia || done]|]);
    intros (l & _ & E)%bind_Return; cbn in E;
    destruct (ConsensusNode.commit_index n <? _); injection E as <- <-; cbn; (split; [lia|lia || done]).
Qed.

Lemma step_bound s o s' : bound s → NodeOp.step s o = Return s' → bound s'.
Proof.
  destruct s as [vs n]. intros Hb ([v n'] & E & [= <-])%bind_Return. cbn [fst snd] in *.
  destruct o as [|r|r|]; cbn [NodeOp.run] in E.
  - apply bind_Return in E as ([r n1] & E1 & [= <- <-]). unfold ConsensusNode.become_candidate in E1.
    apply bind_Return in E1 as (t & [-> _]%add_u64_Return & [= <- <-]). cbn.
    apply bound_vote; [|done|done].
    eapply bound_keep; [exact Hb|cbn; lia|cbn; intros; lia].
  - unfold ConsensusNode.handle_request_vote in E.
    destruct (N.ltb_spec (VoteRequest.term r) (ConsensusNode.current_term n));
      [cbn in E; injection E as <- <-; cbn; by rewrite app_nil_r|].
    set (n1 := if ConsensusNode.current_term n <? VoteRequest.term r then _ else n) in E.
    assert (bound (vs, n1)) as Hb1.
    { eapply bound_keep; [exact Hb|..]; unfold n1;
        destruct (N.ltb_spec (ConsensusNode.current_term n) (VoteRequest.term r)); cbn; intros; (lia || done). }
    destruct (_ && _) eqn:Ev; cbn in E; injection E as <- <-; cbn; [|by rewrite app_nil_r].
    apply andb_true_iff in Ev as [Hc _]. rewrite orb_true_iff, !bool_decide_eq_true in Hc.
    apply bound_vote; [|done|done].
    eapply bound_keep; [exact Hb1|done|]. cbn. intros _ c Ec. destruct Hc; congruence.
  - apply bind_Return in E as ([a n1] & E1 & [= <- <-]). cbn. rewrite app_nil_r.
    destruct (append_keeps_vote _ _ _ _ E1) as [H1 H2].
    eapply bound_keep; [exact Hb|done|]. intros Ht c. by rewrite (H2 Ht).
  - injection E as <- <-. cbn. by rewrite app_nil_r.
Qed.

(** The votes of a node over a history. *)
Definition votes_of (id : ConsensusNodeId.t) (ops : list NodeOp.t) : list (N * ConsensusNodeId.t) :=
  match fold_outcome NodeOp.step ops ([], ConsensusNode.new id) with
  | Return s => s.1
  | _ => []
  end.
Lemma votes_unique id ops t c1 c2 :
  (t, c1) ∈ votes_of id ops → (t, c2) ∈ votes_of id ops → c1 = c2.
Proof.
  unfold votes_of. destruct (fold_outcome _ _ _) as [s| |] eqn:E; [|set_solver..].
  assert (bound s) as [_ Hu].
  { eapply (fold_outcome_ind bound NodeOp.step ops); [|intros ? ? ? _; apply step_bound|exact E].
    split; cbn; set_solver. }
  apply Hu.
Qed.

(** The nodes that voted for a candidate in a term. *)
Definition voters (hist : gmap ConsensusNodeId.t (list NodeOp.t)) (t : N) (c : ConsensusNodeId.t)
    : gset ConsensusNodeId.t :=
  dom (filter (λ h, (t, c) ∈ votes_of h.1 h.2) hist).
Definition majority (hist : gmap ConsensusNodeId.t (list NodeOp.t)) (s : gset ConsensusNodeId.t) : Prop :=
  (size hist / 2 + 1 ≤ size s)%nat.

(** C15: A term has at most one winner.  Let every node of a group start fresh and then handle
    any messages in any order, independently of the others: standing for election, vote
    requests, append requests, becoming leader.  Two candidates that each have the votes of a
    quorum of the group in the same term are the same candidate. *)
Theorem at_most_one_winner_per_term (hist : gmap ConsensusNodeId.t (list NodeOp.t)) t c1 c2 :
  majority hist (voters hist t c1) → majority hist (voters hist t c2) → c1 = c2.
Proof.
  unfold majority. intros H1 H2.
  destruct (decide (voters hist t c1 ∩ voters hist t c2 = ∅)) as [Hd|Hne].
  - exfalso. assert (voters hist t c1 ## voters hist t c2) as Hdis by set_solver.
    assert (size (voters hist t c1 ∪ voters hist t c2) ≤ size (dom hist))%nat as Hle.
    { apply subseteq_size. unfold voters. apply union_least; apply subseteq_dom, map_filter_subseteq. }
    rewrite size_union, size_dom in Hle by done.
    pose proof (Nat.div_mod_eq (size hist) 2). pose proof (Nat.mod_upper_bound (size hist) 2). lia.
  - apply set_choose_L in Hne as [id Hid]. apply elem_of_intersection in Hid as [Ha Hb].
    unfold voters in Ha, Hb. apply elem_of_dom in Ha as [h1 Ha], Hb as [h2 Hb].
    apply map_lookup_filter_Some in Ha as [Ea Ha], Hb as [Eb Hb]. cbn in *.
    assert (h1 = h2) as -> by congruence. by eapply votes_unique.
Qed.

Definition nid (n : N) : ConsensusNodeId.t := ConsensusNodeId.mk n.
Definition ballot : list NodeOp.t := [NodeOp.Vote (VoteRequest.mk 1 (nid 1) 0 0); NodeOp.Vote (VoteRequest.mk 1 (nid 3) 0 0)].
Definition three_nodes : gmap ConsensusNodeId.t (list NodeOp.t) :=
  {[nid 1 := [NodeOp.Stand]; nid 2 := ballot; nid 3 := [NodeOp.Stand]]}.
Lemma at_most_one_winner_per_term_witness :
  majority three_nodes (voters three_nodes 1 (nid 1)) ∧
  ∀ c, majority three_nodes (voters three_nodes 1 c) → nid 1 = c.
Proof.
  assert (majority three_nodes (voters three_nodes 1 (nid 1))) as H
    by (unfold majority; vm_compute; lia).
  split; [exact H|]. intros c Hc. exact (at_most_one_winner_per_term three_nodes 1 (nid 1) c H Hc).
Defined.
End VoteSpec.

(** ** Logs *)
Module LogSpec.
(** Entry number [i] carries the index [i + 1]. *)
Definition indexed_from (k : nat) (l : list LogEntry.t) : Prop :=
  ∀ i e, l !! i = Some e → LogEntry.index e = N.of_nat (k + i) + 1.
Notation indexed := (indexed_from 0).
(** The log matching property: entries of the same position and term are the same, and so is
    everything before them. *)
Definition matching (l L : list LogEntry.t) : Prop :=
  ∀ i a b, l !! i = Some a → L !! i = Some b → LogEntry.term a = LogEntry.term b →
           take (S i) l = take (S i) L.

Lemma last_log_index_indexed n :
  indexed (ConsensusNode.log n) → ConsensusNode.last_log_index n = N.of_nat (length (ConsensusNode.log n)).
Proof.
  intros H. unfold ConsensusNode.last_log_index. rewrite last_lookup.
  destruct (ConsensusNode.log n) as [|e l] eqn:E using rev_ind; [done|].
  rewrite length_app. cbn. replace (pred (length l + 1)) with (length l) by lia.
  rewrite list_lookup_middle by done. cbn.
  rewrite (H (length l) e) by (by rewrite list_lookup_middle). lia.
Qed.

Lemma indexed_from_cons k e l :
  indexed_from k (e :: l) ↔ LogEntry.index e = N.of_nat k + 1 ∧ indexed_from (S k) l.
Proof.
  unfold indexed_from. split.
  - intros H. split; [rewrite (H 0%nat e eq_refl); lia|]. intros i a Hi.
    rewrite (H (S i) a Hi). lia.
  - intros [He H] [|i] a; cbn; [intros [= <-]; lia|]. intros Hi. rewrite (H i a Hi). lia.
Qed.

Lemma append_entry_eq l k e :
  LogEntry.index e = N.of_nat k + 1 →
  ConsensusNode.append_entry l e
  = Return match l !! k with
           | Some x => if LogEntry.term x =? LogEntry.term e then l else take k l ++ [e]
           | None => l ++ [e]
           end.
Proof.
  intros E. unfold ConsensusNode.append_entry, sub_u64, checked_sub. rewrite E.
  rewrite (proj2 (N.leb_le _ _)) by lia. cbn [expect mbind outcome_bind].
  replace (N.to_nat (N.of_nat k + 1 - 1)) with k by lia.
  destruct (l !! k) as [x|]; [|done]. by destruct (_ =? _).
Qed.

(** One entry of the leader at the place where the logs agree so far. *)
Lemma append_entry_matches l L k e :
  take k l = take k L → L !! k = Some e → indexed L → matching l L →
  ∃ l', ConsensusNode.append_entry l e = Return l' ∧ take (S k) l' = take (S k) L ∧ matching l' L.
Proof.
  intros Hk He Hi Hm. rewrite (append_entry_eq l k e) by (rewrite (Hi k e He); lia).
  assert (k ≤ length l)%nat as Hlen.
  { apply (f_equal length) in Hk. rewrite !length_take in Hk. apply lookup_lt_Some in He. lia. }
  assert (∀ l0 : list LogEntry.t, l0 = take k L ++ [e] → take (S k) l0 = take (S k) L ∧ matching l0 L) as Hnew.
  { intros l0 ->. rewrite <- (take_S_r L k e He). rewrite take_take, Nat.min_id. split; [done|].
    intros i a b Ha Hb _. apply lookup_lt_Some in Ha as Hlt. rewrite length_take in Hlt.
    rewrite take_take. f_equal. lia. }
  destruct (l !! k) as [x|] eqn:Ex.
  - destruct (N.eqb_spec (LogEntry.term x) (LogEntry.term e)) as [Et|Et].
    + eexists. split; [done|]. split; [|done]. by apply (Hm k x e).
    + eexists. split; [done|]. apply Hnew. by rewrite Hk.
  - eexists. split; [done|]. apply Hnew. apply lookup_ge_None in Ex.
    rewrite <- Hk, take_ge by lia. done.
Qed.

Lemma append_entries_match L k m l :
  (k + m ≤ length L)%nat → take k l = take k L → indexed L → matching l L →
  ∃ l', fold_outcome ConsensusNode.append_entry (take m (drop k L)) l = Return l' ∧
        take (k + m) l' = take (k + m) L ∧ matching l' L.
Proof.
  revert k l. induction m as [|m IH]; intros k l Hlen Hk Hi Hm.
  - exists l. rewrite Nat.add_0_r. done.
  - destruct (lookup_lt_is_Some_2 L k) as [e Ee]; [lia|].
    rewrite (drop_S L e k Ee). cbn [take fold_outcome].
    destruct (append_entry_matches l L k e) as (l1 & -> & Hk1 & Hm1); [done..|].
    cbn [mbind outcome_bind]. destruct (IH (S k) l1) as (l' & E' & Hk' & Hm'); [lia|done..|].
    exists l'. rewrite Nat.add_succ_r. done.
Qed.

(** What a leader with the log [L] sends to a follower that it takes to have [k] entries:
    the next [m] entries with the position and term of what precedes them. *)
Definition request_from (L : list LogEntry.t) (term : N) (leader : ConsensusNodeId.t)
    (k m : nat) (commit : N) : AppendEntriesRequest.t :=
  AppendEntriesRequest.mk term leader (N.of_nat k) (from_option LogEntry.term 0 (last (take k L)))
    (take m (drop k L)) commit.

Lemma last_take_S {A} (L : list A) k x : L !! k = Some x → last (take (S k) L) = Some x.
Proof. intros E. by rewrite (take_S_r L k x E), last_snoc. Qed.

(** An accepted append makes the follower agree with the leader.  Let the follower's log
    have the log matching property with the leader's.  When it handles a request that the
    leader built from its log, it does not panic, and if it answers with success, its log
    agrees with the leader's up to the end of the request, and still has the log matching
    property; if it refuses, its log is unchanged. *)
Theorem accepted_append_matches_leader (L : list LogEntry.t) (term : N) leader (k m : nat) commit
    (n : ConsensusNode.t) :
  (k + m ≤ length L)%nat → indexed L → matching (ConsensusNode.log n) L →
  ∃ a n', ConsensusNode.handle_append_entries (request_from L term leader k m commit) n = Return (a, n') ∧
    if AppendEntriesResponse.success a
    then take (k + m) (ConsensusNode.log n') = take (k + m) L ∧ matching (ConsensusNode.log n') L
    else ConsensusNode.log n' = ConsensusNode.log n.
Proof.
  intros Hlen Hi Hm. unfold ConsensusNode.handle_append_entries.
  destruct (N.ltb_spec (AppendEntriesRequest.term (request_from L term leader k m commit))
                       (ConsensusNode.current_term n)); [by eexists _, _|].
  match goal with |- context [?m <| ConsensusNode.state := NodeState.Follower |>] =>
    set (n1 := m <| ConsensusNode.state := NodeState.Follower |>) end.
  assert (ConsensusNode.log n1 = ConsensusNode.log n) as El by (unfold n1; by destruct (_ <? _)).
  destruct (if 0 <? _ then _ else true) eqn:Eprev; cbn [negb]; [|by eexists _, _].
  assert (take k (ConsensusNode.log n1) = take k L) as Hk.
  { rewrite El in *. destruct k as [|k]; [done|].
    destruct (lookup_lt_is_Some_2 L k) as [b Hb]; [lia|].
    cbn [request_from AppendEntriesRequest.prev_log_index AppendEntriesRequest.prev_log_term] in Eprev.
    rewrite (last_take_S L k b Hb), (proj2 (N.ltb_lt _ _)) in Eprev by lia.
    replace (N.to_nat (N.of_nat (S k) - 1)) with k in Eprev by lia.
    destruct (ConsensusNode.log n !! k) as [a|] eqn:Ea; [|done].
    apply (Hm k a b Ea Hb). by apply N.eqb_eq. }
  rewrite <- El in Hm.
  destruct (append_entries_match L k m _ Hlen Hk Hi Hm) as (l' & E' & Hk' & Hm').
  cbn [request_from AppendEntriesRequest.entries]. rewrite E'. cbn [mbind outcome_bind].
  eexists _, _. split; [reflexivity|]. cbn. by destruct (_ <? commit).
Qed.

Definition entry (t i p : N) : LogEntry.t := LogEntry.mk t i [p] 0.
Definition leader_log : list LogEntry.t := [entry 1 1 10; entry 2 2 20; entry 2 3 30].
Definition follower_node : ConsensusNode.t :=
  ConsensusNode.mk (VoteSpec.nid 2) NodeState.Follower 1 None [entry 1 1 10; entry 1 2 99] 0 0.
Lemma matching_follower : matching (ConsensusNode.log follower_node) leader_log.
Proof. intros [|[|i]] a b; cbn; [|intros [= <-] [= <-]; discriminate|done]. by intros [= <-] [= <-]. Qed.
Lemma indexed_leader : indexed leader_log.
Proof. intros [|[|[|i]]] e; cbn; [by intros [= <-]..|done]. Qed.
Lemma accepted_append_matches_leader_witness :
  ∃ a n', ConsensusNode.handle_append_entries
            (request_from leader_log 2 (VoteSpec.nid 1) 1 2 3) follower_node = Return (a, n') ∧
    AppendEntriesResponse.success a = true ∧ take 3 (ConsensusNode.log n') = leader_log.
Proof.
  destruct (accepted_append_matches_leader leader_log 2 (VoteSpec.nid 1) 1 2 3 follower_node)
    as (a & n' & E & H); [cbn; lia|exact indexed_leader|exact matching_follower|].
  exists a, n'. split; [exact E|].
  destruct (AppendEntriesResponse.success a) eqn:Es; [split; [reflexivity|exact (proj1 H)]|].
  exfalso. vm_compute in E. injection E as <- _. discriminate Es.
Defined.

(** A heartbeat can commit an entry that the leader does not have.  The follower holds an
    uncommitted entry of term 1 at position 2; the leader of term 2 has another entry there,
    committed by the other nodes.  A heartbeat that matches at position 1 carries the commit
    index 2; [handle_append_entries] takes the minimum with the end of the follower's own log,
    not with the last entry it has checked, and commits the stale entry. *)
Theorem heartbeat_commits_stale_entry :
  ∃ a n', ConsensusNode.handle_append_entries
            (request_from leader_log 2 (VoteSpec.nid 1) 1 0 2) follower_node = Return (a, n') ∧
    AppendEntriesResponse.success a = true ∧ ConsensusNode.commit_index n' = 2 ∧
    ConsensusNode.log n' !! 1%nat = Some (entry 1 2 99) ∧ leader_log !! 1%nat = Some (entry 2 2 20).
Proof. eexists _, _. split; [reflexivity|]. repeat split. Qed.
End LogSpec.

(** ** The cluster as one log *)
Module ClusterOp.
Inductive t :=
| Elect (id : ConsensusNodeId.t)
| Replicate (id : ConsensusNodeId.t) (payload : list N) (timestamp_ns : N).
Definition answer : Type := result (option LogEntry.t) ConsensusError.t.
Definition run `{HashOrder} (o : t) (c : ConsensusCluster.t) : outcome (answer * ConsensusCluster.t) :=
  match o with
  | Elect id => '(r, c) ← ConsensusCluster.elect_leader id c; Return (map_ok (λ _, None) r, c)
  | Replicate id p ts =>
      '(r, c) ← ConsensusCluster.replicate_entry id p ts c; Return (map_ok Some r, c)
  end.
Definition step `{HashOrder} (s : list answer * ConsensusCluster.t) (o : t)
    : outcome (list answer * ConsensusCluster.t) :=
  '(r, c) ← run o s.2; Return (s.1 ++ [r], c).
End ClusterOp.

(** The abstract service: one log, a term, and a leader that may write once. *)
Module SharedLog.
Record t := mk { members : gset ConsensusNodeId.t; term : N; leader : option ConsensusNodeId.t;
                 entries : list LogEntry.t }.
#[global] Instance rebuild_t : Rebuild t := λ s, mk (members s) (term s) (leader s) (entries s).
Definition apply (o : ClusterOp.t) (s : t) : ClusterOp.answer * t :=
  match o with
  | ClusterOp.Elect id =>
      if decide (id ∈ members s)
      then (Ok None, s <| term ::= λ t, t + 1 |> <| leader := Some id |>)
      else (Err (ConsensusError.NodeNotFound id), s)
  | ClusterOp.Replicate id p ts =>
      if decide (id ∈ members s)
      then if decide (leader s = Some id)
           then let e := LogEntry.mk (term s) (N.of_nat (length (entries s)) + 1) p ts in
                (Ok (Some e), s <| leader := None |> <| entries ::= λ l, l ++ [e] |>)
           else (Err ConsensusError.LeaderRequired, s)
      else (Err (ConsensusError.NodeNotFound id), s)
  end.
Definition step (s : list ClusterOp.answer * t) (o : ClusterOp.t) : list ClusterOp.answer * t :=
  let '(r, s') := apply o s.2 in (s.1 ++ [r], s').
End SharedLog.

Module ClusterSpec.
Section with_order.
Context `{HashOrder}.

(** How a node looks in a cluster that holds the abstract state. *)
Definition node_at (s : SharedLog.t) (id : ConsensusNodeId.t) (n : ConsensusNode.t) : Prop :=
  ConsensusNode.id n = id ∧ ConsensusNode.current_term n = SharedLog.term s ∧
  ConsensusNode.log n = SharedLog.entries s ∧
  ConsensusNode.commit_index n = N.of_nat (length (SharedLog.entries s)) ∧
  (ConsensusNode.state n = NodeState.Leader ↔ SharedLog.leader s = Some id).
Record holds (c : ConsensusCluster.t) (s : SharedLog.t) : Prop := {
  holds_members : dom (ConsensusCluster.nodes c) = SharedLog.members s;
  holds_nodes : map_Forall (node_at s) (ConsensusCluster.nodes c);
  holds_indexed : LogSpec.indexed_from 0 (SharedLog.entries s)
}.

(** Voting in a new term with equal logs. *)
Lemma vote_in_new_term s id n r :
  node_at s id n → VoteRequest.term r = SharedLog.term s + 1 →
  VoteRequest.last_log_term r = ConsensusNode.last_log_term n →
  VoteRequest.last_log_index r = ConsensusNode.last_log_index n →
  ConsensusNode.handle_request_vote r n
  = (VoteResponse.mk (SharedLog.term s + 1) true,
     ConsensusNode.mk (ConsensusNode.id n) NodeState.Follower (SharedLog.term s + 1)
       (Some (VoteRequest.candidate_id r)) (ConsensusNode.log n) (ConsensusNode.commit_index n)
       (ConsensusNode.last_applied n)).
Proof.
  intros (_ & Et & _) Er Elt Eli. unfold ConsensusNode.handle_request_vote. rewrite Et, Er.
  rewrite (proj2 (N.ltb_ge _ _)), (proj2 (N.ltb_lt (SharedLog.term s) _)) by lia. cbn.
  change (ConsensusNode.last_log_term _) with (ConsensusNode.last_log_term n).
  change (ConsensusNode.last_log_index _) with (ConsensusNode.last_log_index n).
  rewrite Elt, Eli, N.eqb_refl, N.leb_refl, orb_true_r. done.
Qed.

Definition voted (s : SharedLog.t) (cand : ConsensusNodeId.t) (k : ConsensusNodeId.t)
    (n : ConsensusNode.t) : ConsensusNode.t :=
  if decide (k = cand) then n
  else ConsensusNode.mk (ConsensusNode.id n) NodeState.Follower (SharedLog.term s + 1) (Some cand)
         (ConsensusNode.log n) (ConsensusNode.commit_index n) (ConsensusNode.last_applied n).

Lemma quorum_le c : (0 < size (ConsensusCluster.nodes c))%nat →
  ConsensusCluster.quorum c ≤ N.of_nat (size (ConsensusCluster.nodes c)).
Proof.
  intros Hs. unfold ConsensusCluster.quorum.
  pose proof (N.div_lt_upper_bound (N.of_nat (size (ConsensusCluster.nodes c))) 2
    (N.of_nat (size (ConsensusCluster.nodes c)))). lia.
Qed.

Lemma size_map_imap_total {A} (g : ConsensusNodeId.t → A → A) (m : gmap ConsensusNodeId.t A) :
  size (map_imap (λ k a, Some (g k a)) m) = size m.
Proof.
  rewrite <- !size_dom. f_equal. apply set_eq. intros k. rewrite !elem_of_dom, map_lookup_imap.
  destruct (m !! k); cbn; [by split|done].
Qed.

Lemma count_all {A} (m : gmap ConsensusNodeId.t A) (w : ConsensusNodeId.t → A → bool) :
  (∀ k a, m !! k = Some a → w k a = true) →
  length (filter (λ kv, w kv.1 kv.2 = true) (map_to_list m)) = size m.
Proof.
  intros Hw. rewrite <- length_map_to_list. f_equal. apply filter_keeps_all.
  intros [k a] Hin%elem_of_map_to_list. by apply Hw.
Qed.

Lemma count_but_one {A} (m : gmap ConsensusNodeId.t A) id a :
  m !! id = Some a →
  (1 + length (filter (λ kv, negb (bool_decide (kv.1 = id)) = true) (map_to_list m)))%nat = size m.
Proof.
  intros E. rewrite <- (insert_delete_id m id a E) at 1.
  rewrite (Permutation_length (filter_Permutation _ _ _
    (map_to_list_insert (delete id m) id a (lookup_delete_eq _ _)))).
  rewrite filter_cons, decide_False by (cbn; rewrite bool_decide_true by done; done).
  rewrite filter_keeps_all.
  - rewrite length_map_to_list, map_size_delete, E. cbn.
    assert (size m ≠ 0%nat); [|lia]. intros ->%map_size_empty_inv. done.
  - intros [k b] Hin%elem_of_map_to_list. cbn.
    rewrite bool_decide_false; [done|]. intros ->. by rewrite lookup_delete_eq in Hin.
Qed.

Lemma members_iff c s id : holds c s → id ∈ SharedLog.members s ↔ is_Some (ConsensusCluster.nodes c !! id).
Proof. intros [Hd _ _]. by rewrite <- Hd, elem_of_dom. Qed.

Lemma dom_imap_total {A} (g : ConsensusNodeId.t → A → A) (m : gmap ConsensusNodeId.t A) :
  dom (map_imap (λ k a, Some (g k a)) m) = dom m.
Proof.
  apply set_eq. intros k. rewrite !elem_of_dom, map_lookup_imap. destruct (m !! k); cbn; [by split|done].
Qed.

(** Every election of a member succeeds. *)
Lemma elect_holds c s id :
  holds c s → SharedLog.term s + 1 ≤ u64_max →
  N.of_nat (size (ConsensusCluster.nodes c)) < u64_max →
  ∃ c', ClusterOp.run (ClusterOp.Elect id) c
        = Return ((SharedLog.apply (ClusterOp.Elect id) s).1, c') ∧
        holds c' (SharedLog.apply (ClusterOp.Elect id) s).2.
Proof.
  intros Hh Ht Hsz. pose proof (members_iff c s id Hh) as Hmem. destruct Hh as [Hd Hn Hi].
  cbn [ClusterOp.run SharedLog.apply]. unfold ConsensusCluster.elect_leader.
  destruct (ConsensusCluster.nodes c !! id) as [cand|] eqn:Ec.
  2:{ rewrite decide_False by (rewrite Hmem; by intros [? ?]). by eexists. }
  rewrite decide_True by (rewrite Hmem; eauto).
  destruct (Hn _ _ Ec) as (Eid & Etm & Elog & Ecm & Est).
  unfold ConsensusNode.become_candidate.
  rewrite (proj2 (add_u64_Return _ 1 (SharedLog.term s + 1))) by (rewrite Etm; split; [done|lia]).
  cbn [mbind outcome_bind].
  match goal with |- context [iter_mut ?f ?m 1] => set (F := f); set (ns := m) end.
  assert (ns !! id = Some (ConsensusNode.mk id NodeState.Candidate (SharedLog.term s + 1) (Some id)
            (SharedLog.entries s) (N.of_nat (length (SharedLog.entries s)))
            (ConsensusNode.last_applied cand))) as Ecand.
  { unfold ns. cbn. rewrite lookup_insert_eq. unfold update_field. cbn. by rewrite Eid, Elog, Ecm. }
  assert (size ns = size (ConsensusCluster.nodes c)) as Esz.
  { unfold ns. cbn. rewrite map_size_insert, Ec. done. }
  assert (∀ k, k ≠ id → ns !! k = ConsensusCluster.nodes c !! k) as Ens
    by (intros k Hne; unfold ns; cbn; by rewrite lookup_insert_ne).
  assert (dom ns = dom (ConsensusCluster.nodes c)) as Edom
    by (unfold ns; cbn; rewrite dom_insert_lookup_L; [done|by eexists]).
  clearbody ns.
  rewrite (iter_mut_spec F (voted s id) (λ k _, negb (bool_decide (k = id)))).
  2:{ intros k a n Ek Hno. unfold F, voted. destruct (decide (k = id)) as [->|Hne].
      - rewrite bool_decide_true by done. cbn. do 2 f_equal. lia.
      - rewrite Ens in Ek by done. apply Hn in Ek as Hk.
        rewrite (vote_in_new_term s k a); [|done|done|..].
        + cbn. rewrite (proj2 (add_u64_Return n 1 (n + 1))) by lia. cbn. rewrite Eid, bool_decide_false by done.
          done.
        + cbn. destruct Hk as (_ & _ & Ek' & _). unfold ConsensusNode.last_log_term. cbn. by rewrite Elog, Ek'.
        + cbn. destruct Hk as (_ & _ & Ek' & _). unfold ConsensusNode.last_log_index. cbn. by rewrite Elog, Ek'. }
  2:{ rewrite Esz. lia. }
  cbn [mbind outcome_bind].
  set (c1 := (c <| ConsensusCluster.nodes ::= _ |>) <| ConsensusCluster.nodes := _ |>).
  assert (size (ConsensusCluster.nodes c1) = size ns) as Esz1 by apply size_map_imap_total.
  rewrite (proj2 (N.ltb_ge _ _)).
  2:{ etrans; [apply quorum_le|]; rewrite Esz1, <- (count_but_one _ _ _ Ecand); lia. }
  cbn [map_ok mbind outcome_bind]. eexists. split; [done|].
  split; cbn; [|intros k n|done].
  - by rewrite dom_alter_L, dom_imap_total, Edom.
  - rewrite lookup_alter_Some, map_lookup_imap. unfold voted.
    intros [(<- & n0 & E0 & ->)|(Hne & E0)].
    + rewrite Ecand in E0. cbn in E0. rewrite decide_True in E0 by done. injection E0 as <-.
      by split_and!.
    + destruct (ns !! k) as [a|] eqn:Ek; [|done]. cbn in E0. rewrite decide_False in E0 by done.
      injection E0 as <-. rewrite Ens in Ek by done.
      apply Hn in Ek as (? & ? & ? & ? & ?). split_and!; cbn; try done. split; [done|]. congruence.
Qed.

(** A leader's append to nodes that all have its log. *)
Definition appended (s : SharedLog.t) (e : LogEntry.t) (n : ConsensusNode.t) : ConsensusNode.t :=
  ConsensusNode.mk (ConsensusNode.id n) NodeState.Follower (SharedLog.term s)
    (ConsensusNode.voted_for n) (SharedLog.entries s ++ [e])
    (N.of_nat (length (SharedLog.entries s)) + 1) (ConsensusNode.last_applied n).

Lemma append_to_node s id n leader e :
  node_at s id n → LogSpec.indexed_from 0 (SharedLog.entries s) →
  LogEntry.index e = N.of_nat (length (SharedLog.entries s)) + 1 →
  ConsensusNode.handle_append_entries
    (AppendEntriesRequest.mk (SharedLog.term s) leader (N.of_nat (length (SharedLog.entries s)))
       (from_option LogEntry.term 0 (last (SharedLog.entries s))) [e]
       (N.of_nat (length (SharedLog.entries s)) + 1)) n
  = Return (AppendEntriesResponse.mk (SharedLog.term s) true (LogEntry.index e), appended s e n).
Proof.
  intros (Eid & Et & El & Ecm & _) Hi He. unfold ConsensusNode.handle_append_entries.
  cbn [AppendEntriesRequest.term]. rewrite Et, !(proj2 (N.ltb_ge _ _)) by lia.
  cbn [AppendEntriesRequest.prev_log_index AppendEntriesRequest.prev_log_term
       AppendEntriesRequest.entries AppendEntriesRequest.leader_commit].
  match goal with |- context [negb ?b] => assert (b = true) as -> end.
  { cbn. rewrite El. destruct (SharedLog.entries s) as [|x l] eqn:E using rev_ind; [done|].
    rewrite length_app, last_snoc. cbn. rewrite (proj2 (N.ltb_lt _ _)) by lia.
    rewrite list_lookup_middle by lia. apply N.eqb_refl. }
  cbn [negb fold_outcome]. cbn [ConsensusNode.log update_field].
  change (ConsensusNode.log (n <| ConsensusNode.state := NodeState.Follower |>)) with (ConsensusNode.log n).
  rewrite El, (LogSpec.append_entry_eq _ _ e He), lookup_ge_None_2 by done.
  cbn [mbind outcome_bind]. cbn. rewrite Ecm, (proj2 (N.ltb_lt _ _)) by lia.
  unfold appended, ConsensusNode.last_log_index, update_field. cbn. rewrite !last_snoc. cbn. rewrite He, N.min_id, Et. done.
Qed.

Lemma indexed_snoc l e :
  LogSpec.indexed_from 0 l → LogEntry.index e = N.of_nat (length l) + 1 → LogSpec.indexed_from 0 (l ++ [e]).
Proof.
  intros Hl He i x [Hi|[Hge Hi]]%lookup_app_Some; [by apply Hl|].
  apply list_lookup_singleton_Some in Hi as [Hz <-]. rewrite He. f_equal. f_equal. lia.
Qed.

Lemma replicate_holds c s id p ts :
  holds c s → N.of_nat (length (SharedLog.entries s)) + 1 ≤ u64_max →
  N.of_nat (size (ConsensusCluster.nodes c)) < u64_max →
  ∃ c', ClusterOp.run (ClusterOp.Replicate id p ts) c
        = Return ((SharedLog.apply (ClusterOp.Replicate id p ts) s).1, c') ∧
        holds c' (SharedLog.apply (ClusterOp.Replicate id p ts) s).2.
Proof.
  intros Hh Hl Hsz. pose proof (members_iff c s id Hh) as Hmem. pose proof Hh as [Hd Hn Hi].
  cbn [ClusterOp.run SharedLog.apply]. unfold ConsensusCluster.replicate_entry.
  destruct (ConsensusCluster.nodes c !! id) as [ldr|] eqn:Ec.
  2:{ rewrite decide_False by (rewrite Hmem; by intros [? ?]). by eexists. }
  rewrite (decide_True (P := id ∈ _)) by (rewrite Hmem; eauto).
  destruct (Hn _ _ Ec) as (Eid & Etm & Elog & Ecm & Est).
  destruct (decide (ConsensusNode.state ldr ≠ NodeState.Leader)) as [Hnl|Hld].
  { rewrite decide_False by (rewrite <- Est; done). by eexists. }
  apply dec_stable, Est in Hld. rewrite decide_True by done.
  rewrite LogSpec.last_log_index_indexed, Elog by (by rewrite Elog).
  rewrite (proj2 (add_u64_Return _ 1 (N.of_nat (length (SharedLog.entries s)) + 1))) by (split; [done|lia]).
  cbn [mbind outcome_bind]. unfold ConsensusNode.last_log_term. rewrite Elog, Etm.
  set (e := LogEntry.mk _ _ p ts).
  rewrite (iter_mut_spec _ (λ _, appended s e) (λ _ _, true)).
  2:{ intros k a n Ek Hno. rewrite (append_to_node s k a) by (done || by apply Hn). cbn.
      by rewrite (proj2 (add_u64_Return n 1 (n + 1))) by lia. }
  2:{ lia. }
  cbn [mbind outcome_bind]. 
  pose proof (count_all (ConsensusCluster.nodes c) (λ _ _, true) (λ _ _ _, eq_refl)) as Hcount.
  cbv beta in Hcount. rewrite Hcount.
  set (c1 := c <| ConsensusCluster.nodes := _ |>).
  assert (size (ConsensusCluster.nodes c1) = size (ConsensusCluster.nodes c)) as Esz
    by (unfold c1; cbn; apply size_map_imap_total).
  rewrite (proj2 (N.ltb_ge _ _)).
  2:{ etrans; [apply quorum_le|]; rewrite Esz; [|lia].
      apply Nat.neq_0_lt_0. intros Hz%map_size_empty_inv. by rewrite Hz in Ec. }
  cbn [map_ok mbind outcome_bind]. eexists. split; [done|].
  split; cbn; [by rewrite dom_imap_total| |by apply indexed_snoc].
  intros k n. rewrite map_lookup_imap. destruct (ConsensusCluster.nodes c !! k) as [a|] eqn:Ek; [|done].
  cbn. intros [= <-]. destruct (Hn _ _ Ek) as (? & ? & ? & ? & ?).
  split_and!; cbn; try done. rewrite length_app. cbn. lia.
Qed.

(** A cluster of new nodes, and the empty log. *)
Definition start (ids : list ConsensusNodeId.t) : ConsensusCluster.t :=
  foldl (λ c id, ConsensusCluster.add_node (ConsensusNode.new id) c) ConsensusCluster.new ids.
Definition empty_log (ids : list ConsensusNodeId.t) : SharedLog.t :=
  SharedLog.mk (list_to_set ids) 0 None [].

Lemma start_snoc ids id :
  start (ids ++ [id]) = ConsensusCluster.add_node (ConsensusNode.new id) (start ids).
Proof. unfold start. by rewrite foldl_snoc. Qed.

Lemma start_holds ids :
  holds (start ids) (empty_log ids) ∧ (size (ConsensusCluster.nodes (start ids)) ≤ length ids)%nat.
Proof.
  induction ids as [|id ids [[Hd Hn Hi] IHs]] using rev_ind; [split; [split|]; done|].
  rewrite start_snoc. split; [split|]; cbn in *.
  - rewrite dom_insert_L, Hd, list_to_set_app_L. set_solver.
  - apply map_Forall_insert_2; [by split_and!|]. eapply map_Forall_impl; [exact Hn|done].
  - done.
  - rewrite map_size_insert, length_app. destruct (_ !! id); cbn; lia.
Qed.

Lemma step_holds c s o n :
  holds c s → N.of_nat (size (ConsensusCluster.nodes c)) < u64_max →
  SharedLog.term s + N.of_nat (S n) ≤ u64_max →
  N.of_nat (length (SharedLog.entries s)) + N.of_nat (S n) ≤ u64_max →
  ∃ c', ClusterOp.run o c = Return ((SharedLog.apply o s).1, c') ∧
        holds c' (SharedLog.apply o s).2 ∧
        size (ConsensusCluster.nodes c') = size (ConsensusCluster.nodes c) ∧
        SharedLog.term (SharedLog.apply o s).2 + N.of_nat n ≤ u64_max ∧
        N.of_nat (length (SharedLog.entries (SharedLog.apply o s).2)) + N.of_nat n ≤ u64_max.
Proof.
  intros Hh Hsz Ht Hl.
  assert (∃ c', ClusterOp.run o c = Return ((SharedLog.apply o s).1, c') ∧
                holds c' (SharedLog.apply o s).2) as (c' & E & Hh').
  { destruct o as [id|id p ts]; [apply elect_holds|apply replicate_holds]; (done || lia). }
  exists c'. split; [done|]. split; [done|].
  assert (SharedLog.members (SharedLog.apply o s).2 = SharedLog.members s ∧
          SharedLog.term (SharedLog.apply o s).2 ≤ SharedLog.term s + 1 ∧
          (length (SharedLog.entries (SharedLog.apply o s).2) ≤ length (SharedLog.entries s) + 1)%nat)
    as (Em & Et & El).
  { destruct o; cbn; repeat destruct (decide _); cbn; rewrite ?length_app; cbn; split_and!; (done || lia). }
  destruct Hh as [Hd _ _], Hh' as [Hd' _ _].
  split_and!; [by rewrite <- !size_dom, Hd, Hd', Em|lia|lia].
Qed.

Lemma history_holds ops rs c s :
  holds c s → N.of_nat (size (ConsensusCluster.nodes c)) < u64_max →
  SharedLog.term s + len ops ≤ u64_max →
  N.of_nat (length (SharedLog.entries s)) + len ops ≤ u64_max →
  ∃ c', fold_outcome ClusterOp.step ops (rs, c) = Return ((foldl SharedLog.step (rs, s) ops).1, c') ∧
        holds c' (foldl SharedLog.step (rs, s) ops).2.
Proof.
  revert rs c s. induction ops as [|o ops IH]; intros rs c s Hh Hsz Ht Hl; [by exists c|].
  unfold len in *. cbn [length] in Ht, Hl.
  destruct (step_holds c s o (length ops)) as (c1 & E1 & H1 & S1 & T1 & L1); [done..|].
  cbn [fold_outcome foldl].
  assert (ClusterOp.step (rs, c) o = Return (rs ++ [(SharedLog.apply o s).1], c1)) as ->
    by (unfold ClusterOp.step; cbn [snd fst]; by rewrite E1).
  assert (SharedLog.step (rs, s) o = (rs ++ [(SharedLog.apply o s).1], (SharedLog.apply o s).2)) as ->
    by (unfold SharedLog.step; cbn [snd fst]; by destruct (SharedLog.apply o s)).
  cbn [mbind outcome_bind].
  apply IH; [done|by rewrite S1|done|done].
Qed.

(** C16: A cluster is one shared log.  For a cluster of new nodes and any history of elections
    and writes, whatever the iteration order of the node table, the answers are those of the
    abstract service, and afterwards every node holds the same log, the entries that were
    acknowledged in their order, fully committed.  An election of a member always succeeds and
    starts a new term; a write succeeds exactly for the node elected last, and only once: the
    append request goes to the leader too and turns it into a follower, so that the next write
    is refused with [LeaderRequired] until another election. *)
Theorem cluster_is_shared_log (ids : list ConsensusNodeId.t) (ops : list ClusterOp.t) :
  len ids < u64_max → len ops ≤ u64_max →
  let '(answers, s) := foldl SharedLog.step ([], empty_log ids) ops in
  ∃ c, fold_outcome ClusterOp.step ops ([], start ids) = Return (answers, c) ∧
       dom (ConsensusCluster.nodes c) = list_to_set ids ∧
       (∀ id n, ConsensusCluster.node id c = Some n →
          ConsensusNode.log n = SharedLog.entries s ∧
          ConsensusNode.commit_index n = len (SharedLog.entries s) ∧
          ConsensusNode.current_term n = SharedLog.term s ∧
          (ConsensusNode.state n = NodeState.Leader ↔ SharedLog.leader s = Some id)).
Proof.
  intros Hids Hops. destruct (start_holds ids) as [Hh Hsz].
  destruct (history_holds ops [] (start ids) (empty_log ids)) as (c & E & [Hd Hn _]);
    [done|unfold len in *; lia|unfold len in *; cbn; lia|unfold len in *; cbn; lia|].
  assert (SharedLog.members (foldl SharedLog.step ([], empty_log ids) ops).2 = list_to_set ids) as Em.
  { apply (foldl_ind (λ p, SharedLog.members p.2 = list_to_set ids)); [done|].
    intros [rs s] o _ Hm. unfold SharedLog.step. cbn in *.
    destruct o; cbn; repeat destruct (decide _); done. }
  destruct (foldl SharedLog.step ([], empty_log ids) ops) as [answers s].
  exists c. split; [done|]. split; [by rewrite Hd|]. intros id n En.
  destruct (Hn _ _ En) as (? & ? & ? & ? & ?). by split_and!.
Qed.
End with_order.

Definition three : list ConsensusNodeId.t := [VoteSpec.nid 1; VoteSpec.nid 2; VoteSpec.nid 3].
Definition two_writes : list ClusterOp.t :=
  [ClusterOp.Elect (VoteSpec.nid 1); ClusterOp.Replicate (VoteSpec.nid 1) [7] 10;
   ClusterOp.Replicate (VoteSpec.nid 1) [8] 11; ClusterOp.Elect (VoteSpec.nid 2);
   ClusterOp.Replicate (VoteSpec.nid 2) [9] 12].
Lemma cluster_is_shared_log_witness :
  let H := canonical_order in
  ∃ c, fold_outcome ClusterOp.step two_writes ([], start three)
       = Return ([Ok None; Ok (Some (LogEntry.mk 1 1 [7] 10)); Err ConsensusError.LeaderRequired;
                  Ok None; Ok (Some (LogEntry.mk 2 2 [9] 12))], c) ∧
       ∀ id n, ConsensusCluster.node id c = Some n →
         ConsensusNode.log n = [LogEntry.mk 1 1 [7] 10; LogEntry.mk 2 2 [9] 12].
Proof.
  intros H. destruct (@cluster_is_shared_log H three two_writes) as (c & E & _ & Hn);
    [reflexivity|vm_compute; discriminate|].
  exists c. split; [exact E|]. intros id n En. exact (proj1 (Hn id n En)).
Defined.

(** Adding nodes can elect a second leader of the same term.  One node elects itself in
    term 1; three new nodes join, and one of them is elected, with the votes of the new nodes,
    in term 1 too: [add_node] is not part of the protocol, and the first leader, which refuses
    its vote, stays a leader. *)
Theorem added_nodes_elect_second_leader :
  let H := canonical_order in
  match ConsensusCluster.elect_leader (VoteSpec.nid 1) (start [VoteSpec.nid 1]) with
  | Return (Ok _, c) =>
      let c := foldl (λ c id, ConsensusCluster.add_node (ConsensusNode.new id) c) c
                 [VoteSpec.nid 2; VoteSpec.nid 3; VoteSpec.nid 4] in
      match ConsensusCluster.elect_leader (VoteSpec.nid 2) c with
      | Return (Ok _, c) =>
          ∀ id, id = VoteSpec.nid 1 ∨ id = VoteSpec.nid 2 →
            (λ n, (ConsensusNode.state n, ConsensusNode.current_term n)) <$> ConsensusCluster.node id c
            = Some (NodeState.Leader, 1)
      | _ => False
      end
  | _ => False
  end.
Proof. vm_compute. intros id [-> | ->]; reflexivity. Qed.
End ClusterSpec.

(** ** Merging device logs *)
Module SyncSpec.
Notation obj := VersionedObject.object_id.
Notation time := VersionedObject.timestamp_ns.

(** [e] is an entry for its object that no other is newer than. *)
Definition newest (e : VersionedObject.t) (l : list VersionedObject.t) : Prop :=
  e ∈ l ∧ ∀ e', e' ∈ l → obj e' = obj e → time e' ≤ time e.

Lemma compact_spec l o :
  match foldl SyncState.keep_latest ∅ l !! o with
  | Some e => obj e = o ∧ newest e l
  | None => ∀ e, e ∈ l → obj e ≠ o
  end.
Proof.
  induction l as [|x l IH] using rev_ind;
    [cbn [foldl]; rewrite lookup_empty; set_solver|].
  rewrite foldl_snoc. set (m := foldl SyncState.keep_latest ∅ l) in *.
  unfold SyncState.keep_latest. destruct (decide (o = obj x)) as [->|Hne].
  - destruct (m !! obj x) as [c|] eqn:Ec.
    + destruct IH as [Hc [Hin Hmax]].
      destruct (N.leb_spec (time c) (time x)) as [Hle|Hlt].
      * rewrite lookup_insert_eq. split; [done|]. split; [set_solver|].
        intros e' He' Ho. apply elem_of_app in He' as [He'|He'%list_elem_of_singleton]; [|by subst].
        etrans; [|exact Hle]. apply Hmax; congruence.
      * rewrite Ec. split; [done|]. split; [set_solver|].
        intros e' He' Ho. apply elem_of_app in He' as [He'|He'%list_elem_of_singleton]; [by apply Hmax|].
        subst. lia.
    + rewrite lookup_insert_eq. split; [done|]. split; [set_solver|].
      intros e' He' Ho. apply elem_of_app in He' as [He'|He'%list_elem_of_singleton]; [|by subst].
      exfalso. by apply (IH e').
  - set (b := match m !! obj x with Some _ => _ | None => _ end).
    assert ((if b then <[obj x := x]> m else m) !! o = m !! o) as -> by
      (destruct b; [by apply lookup_insert_ne|done]).
    destruct (m !! o) as [e|].
    + destruct IH as [Ho [Hin Hmax]]. split; [done|]. split; [set_solver|].
      intros e' He' Hoe. apply elem_of_app in He' as [He'|He'%list_elem_of_singleton]; [by apply Hmax|].
      congruence.
    + intros e He. apply elem_of_app in He as [He|He%list_elem_of_singleton]; [by apply IH|congruence].
Qed.

(** Two versions of an object never carry the same time. *)
Definition distinct_times (l : list VersionedObject.t) : Prop :=
  ∀ a b, a ∈ l → b ∈ l → obj a = obj b → time a = time b → a = b.

Lemma compact_same_entries l k :
  (∀ e, e ∈ l ↔ e ∈ k) → distinct_times l →
  foldl SyncState.keep_latest ∅ l = foldl SyncState.keep_latest ∅ k.
Proof.
  intros Heq Hd. apply map_eq. intros o. pose proof (compact_spec l o) as Hl. pose proof (compact_spec k o) as Hk.
  destruct (foldl _ ∅ l !! o) as [a|], (foldl _ ∅ k !! o) as [b|]; [| | |done].
  - destruct Hl as [Ea [Ha Hma]], Hk as [Eb [Hb Hmb]]. f_equal. apply Hd; [done|by apply Heq|congruence|].
    apply N.le_antisymm; [apply Hmb|apply Hma]; try (by apply Heq); congruence.
  - destruct Hl as [Ea [Ha _]]. apply Heq, Hk in Ha. congruence.
  - destruct Hk as [Eb [Hb _]]. apply Heq, Hl in Hb. congruence.
Qed.

Section with_order.
Context `{HashOrder}.

(** Merging keeps exactly the entries of both sides. *)
Lemma extend_all_entries logs m e :
  (∃ d l, foldl SyncState.extend_log m logs !! d = Some l ∧ e ∈ l) ↔
  (∃ d l, m !! d = Some l ∧ e ∈ l) ∨ (∃ log, log ∈ logs ∧ e ∈ DeviceLog.entries log).
Proof.
  revert m. induction logs as [|x logs IH]; intros m; cbn; [set_solver|].
  rewrite IH. unfold SyncState.extend_log at 1. split.
  - intros [(d & l & Hl & He)|(log & Hin & He)]; [|right; exists log; set_solver].
    apply lookup_insert_Some in Hl as [[<- <-]|[_ Hl]]; [|left; eauto].
    apply elem_of_app in He as [He|He]; [|right; exists x; set_solver].
    destruct (m !! _) as [l0|] eqn:E0; cbn in He; [left; eauto|set_solver].
  - intros [(d & l & Hl & He)|(log & [->|Hin]%elem_of_cons & He)].
    + left. destruct (decide (d = DeviceLog.device_id x)) as [->|Hne].
      * eexists _, _. rewrite lookup_insert_eq. split; [done|]. rewrite Hl. cbn. set_solver.
      * exists d, l. by rewrite lookup_insert_ne.
    + left. eexists _, _. rewrite lookup_insert_eq. split; [done|]. set_solver.
    + right. eauto.
Qed.

Lemma elem_of_all_entries s e : e ∈ SyncState.all_entries s ↔ ∃ log, log ∈ SyncState.logs s ∧ e ∈ DeviceLog.entries log.
Proof. unfold SyncState.all_entries. rewrite list_elem_of_bind. naive_solver. Qed.

Lemma elem_of_merge a b e :
  e ∈ SyncState.all_entries (SyncState.merge a b)
  ↔ e ∈ SyncState.all_entries a ∨ e ∈ SyncState.all_entries b.
Proof.
  rewrite !elem_of_all_entries. unfold SyncState.merge. cbn.
  transitivity (∃ d l, foldl SyncState.extend_log ∅ (SyncState.logs b ++ SyncState.logs a) !! d = Some l ∧ e ∈ l).
  - split.
    + intros (log & Hin & He). apply list_elem_of_fmap in Hin as ([d l] & -> & Hin).
      apply elem_of_hm_iter in Hin. eauto.
    + intros (d & l & Hl & He). exists (DeviceLog.mk d l). split; [|done].
      apply list_elem_of_fmap. exists (d, l). by rewrite elem_of_hm_iter.
  - rewrite extend_all_entries. setoid_rewrite lookup_empty. setoid_rewrite elem_of_app. naive_solver.
Qed.
End with_order.

(** Replicas converge.  When no two different versions of an object carry the same
    timestamp, merging two states in either order, with whatever iteration orders, and merging
    any of them again, compacts to the same objects: for each object the version with the
    largest timestamp that either side knows.  Nothing else survives and no object is lost. *)
Theorem merged_replicas_converge (h1 h2 h3 : HashOrder) (a b : SyncState.t) :
  distinct_times (SyncState.all_entries a ++ SyncState.all_entries b) →
  SyncState.compact (@SyncState.merge h1 b a) = SyncState.compact (@SyncState.merge h2 a b) ∧
  SyncState.compact (@SyncState.merge h3 b (@SyncState.merge h1 b a))
    = SyncState.compact (@SyncState.merge h1 b a) ∧
  (∀ o e, SyncState.compact (@SyncState.merge h1 b a) !! o = Some e ↔
     obj e = o ∧ newest e (SyncState.all_entries a ++ SyncState.all_entries b)).
Proof.
  intros Hd. set (l := SyncState.all_entries a ++ SyncState.all_entries b) in *.
  assert (∀ e, e ∈ SyncState.all_entries (@SyncState.merge h1 b a) ↔ e ∈ l) as H1
    by (intros e; rewrite elem_of_merge; unfold l; set_solver).
  assert (∀ e, e ∈ SyncState.all_entries (@SyncState.merge h2 a b) ↔ e ∈ l) as H2
    by (intros e; rewrite elem_of_merge; unfold l; set_solver).
  assert (∀ e, e ∈ SyncState.all_entries (@SyncState.merge h3 b (@SyncState.merge h1 b a)) ↔ e ∈ l) as H3
    by (intros e; rewrite elem_of_merge, H1; unfold l; set_solver).
  unfold SyncState.compact.
  rewrite <- (compact_same_entries l _ (λ e, symmetry (H1 e)) Hd).
  rewrite <- (compact_same_entries l _ (λ e, symmetry (H2 e)) Hd).
  rewrite <- (compact_same_entries l _ (λ e, symmetry (H3 e)) Hd).
  split; [done|]. split; [done|]. intros o e. pose proof (compact_spec l o) as Hs.
  destruct (foldl _ ∅ l !! o) as [e'|].
  - destruct Hs as [Ho [Hin Hmax]]. split; [by intros [= <-]|]. intros [Hoe [Hein Hemax]]. f_equal.
    apply Hd; [done|done|congruence|]. apply N.le_antisymm; [apply Hemax|apply Hmax]; congruence.
  - split; [done|]. intros [Hoe [Hein _]]. by apply Hs in Hein.
Qed.

Definition version (o v t : N) : VersionedObject.t :=
  VersionedObject.mk (ObjectId.from_uuid o) (VersionId.from_uuid v) [v] t.
Definition device (d : N) (es : list VersionedObject.t) : SyncState.t :=
  SyncState.mk [DeviceLog.mk (DeviceId.mk d) es].
Lemma merged_replicas_converge_witness :
  let a := device 1 [version 1 10 5; version 2 20 6] in
  let b := device 2 [version 1 11 7] in
  distinct_times (SyncState.all_entries a ++ SyncState.all_entries b) ∧
  SyncState.compact (@SyncState.merge canonical_order b a)
  = SyncState.compact (@SyncState.merge canonical_order a b) ∧
  SyncState.compact (@SyncState.merge canonical_order b a) !! ObjectId.from_uuid 1 = Some (version 1 11 7).
Proof.
  intros a b.
  assert (distinct_times (SyncState.all_entries a ++ SyncState.all_entries b)) as Hd.
  { intros x y. rewrite (eq_refl : SyncState.all_entries a ++ SyncState.all_entries b
      = [version 1 10 5; version 2 20 6; version 1 11 7]).
    rewrite !elem_of_cons, !elem_of_nil. intros [->|[->|[->|[]]]] [->|[->|[->|[]]]];
      intros E1 E2; vm_compute in E1, E2; first [reflexivity|discriminate E1|discriminate E2]. }
  split; [exact Hd|].
  destruct (merged_replicas_converge canonical_order canonical_order canonical_order a b Hd) as [H1 _].
  split; [exact H1|vm_compute; reflexivity].
Defined.

(** Replicas can stay apart on equal timestamps.  Two devices wrote different versions of
    one object at the same time; merging in the two directions compacts to different
    versions: the tie goes to the entry that the iteration meets last. *)
Theorem equal_timestamps_diverge :
  let a := device 1 [version 1 10 5] in
  let b := device 1 [version 1 11 5] in
  SyncState.compact (@SyncState.merge canonical_order b a) !! ObjectId.from_uuid 1 = Some (version 1 11 5) ∧
  SyncState.compact (@SyncState.merge canonical_order a b) !! ObjectId.from_uuid 1 = Some (version 1 10 5).
Proof. split; vm_compute; reflexivity. Qed.
End SyncSpec.
