(* ===== verification/Editor.v ===== *)
(** * The editor core

    [editor_core/src]: a modal text editor as a state machine over keys.  A Rust [String] is
    UTF-8 and indexed by bytes: a string is modelled as its characters, and an operation at a
    byte index finds the character boundary there or panics.  Rows, columns and lengths are
    [usize] values bounded by the size of the text in memory and are modelled as [nat]. *)

From S2P Require Import Prelude.
Open Scope list_scope.
Open Scope nat_scope.

(** ** Strings *)

Module Str.
(** Unicode scalar values. *)
Notation char := N.
Notation t := (list N).
Definition of_string (s : string) : t := Ascii.N_of_ascii <$> String.list_ascii_of_string s.
(** [char::len_utf8]. *)
Definition len_utf8 (c : char) : nat :=
  if (c <? 0x80)%N then 1 else if (c <? 0x800)%N then 2 else if (c <? 0x10000)%N then 3 else 4.
(** [str::len]: bytes. *)
Fixpoint len (s : t) : nat := match s with [] => 0 | c :: s => len_utf8 c + len s end.
(** [str::split_at] at a byte index; [None] when it is not a character boundary. *)
Fixpoint split_at (i : nat) (s : t) : option (t * t) :=
  match i, s with
  | O, _ => Some ([], s)
  | S _, [] => None
  | S _, c :: s' =>
      if len_utf8 c <=? i then (λ '(a, b), (c :: a, b)) <$> split_at (i - len_utf8 c) s' else None
  end.
(** [String::insert]. *)
Definition insert (i : nat) (c : char) (s : t) : outcome t :=
  '(a, b) ← expect (split_at i s); Return (a ++ c :: b).
(** [String::remove]: panics at the end too. *)
Definition remove (i : nat) (s : t) : outcome t :=
  '(a, b) ← expect (split_at i s);
  match b with [] => Panic | _ :: b => Return (a ++ b) end.
(** [str::starts_with]. *)
Fixpoint starts_with (q s : t) : bool :=
  match q, s with
  | [], _ => true
  | c :: q, d :: s => (c =? d)%N && starts_with q s
  | _ :: _, [] => false
  end.
(** [str::find] of a substring: the byte offset of the first match. *)
Fixpoint find (q s : t) : option nat :=
  if starts_with q s then Some 0
  else match s with
       | [] => None
       | c :: s => (λ n, len_utf8 c + n) <$> find q s
       end.
(** [str::lines]: cut after each line feed, and drop it with a carriage return before it. *)
Definition strip_cr (s : t) : t :=
  match reverse s with 13%N :: r => reverse r | _ => s end.
Fixpoint lines_from (acc s : t) : list t :=
  match s with
  | [] => match acc with [] => [] | _ => [reverse acc] end
  | c :: s => if (c =? 10)%N then strip_cr (reverse acc) :: lines_from [] s
              else lines_from (c :: acc) s
  end.
Definition lines (s : t) : list t := lines_from [] s.
(** [join("\n")]. *)
Fixpoint join (l : list t) : t :=
  match l with
  | [] => []
  | [s] => s
  | s :: l => s ++ 10%N :: join l
  end.
(** [char::is_whitespace] and [str::trim]. *)
Definition is_whitespace (c : char) : bool :=
  ((9 <=? c) && (c <=? 13) || (c =? 32) || (c =? 0x85) || (c =? 0xA0) || (c =? 0x1680)
   || ((0x2000 <=? c) && (c <=? 0x200A)) || (c =? 0x2028) || (c =? 0x2029) || (c =? 0x202F)
   || (c =? 0x205F) || (c =? 0x3000))%N.
Fixpoint trim_start (s : t) : t :=
  match s with
  | c :: s' => if is_whitespace c then trim_start s' else s
  | [] => []
  end.
Definition trim (s : t) : t := reverse (trim_start (reverse (trim_start s))).
End Str.

(** ** The buffer ([editor_core/src/buffer.rs]) *)

Module Position.
(* editor_core/src/buffer.rs:10-21 Position *)
Record t := new { row : nat; col : nat }.
#[global] Instance eq_dec : EqDecision t.
Proof. solve_decision. Defined.
#[global] Instance rebuild_t : Rebuild t := λ p, new (row p) (col p).
(* editor_core/src/buffer.rs:23-25 Position::zero *)
Definition zero : t := new 0 0.
End Position.

Module TextBuffer.
(* editor_core/src/buffer.rs:28-32 TextBuffer *)
Record t := mk { lines : list Str.t }.
#[global] Instance eq_dec : EqDecision t.
Proof. solve_decision. Defined.
#[global] Instance rebuild_t : Rebuild t := λ b, mk (lines b).
(* editor_core/src/buffer.rs:35-39 TextBuffer::new *)
Definition new : t := mk [[]].
(* editor_core/src/buffer.rs:41-48 TextBuffer::from_string *)
Definition from_string (content : Str.t) : t :=
  mk match content with [] => [[]] | _ => Str.lines content end.
(* editor_core/src/buffer.rs:50-52 TextBuffer::as_string *)
Definition as_string (b : t) : Str.t := Str.join (lines b).
(* editor_core/src/buffer.rs:54-56 TextBuffer::line_count *)
Definition line_count (b : t) : nat := length (lines b).
(* editor_core/src/buffer.rs:58-60 TextBuffer::line *)
Definition line (row : nat) (b : t) : option Str.t := lines b !! row.
(* editor_core/src/buffer.rs:62-64 TextBuffer::line_length *)
Definition line_length (row : nat) (b : t) : nat := from_option Str.len 0 (lines b !! row).
(* editor_core/src/buffer.rs:70-83 TextBuffer::insert_char *)
Definition insert_char (pos : Position.t) (ch : N) (b : t) : outcome (bool * t) :=
  match lines b !! Position.row pos with
  | None => Return (false, b)
  | Some line =>
      if Str.len line <? Position.col pos then Return (false, b)
      else
        line ← Str.insert (Position.col pos) ch line;
        Return (true, b <| lines ::= <[Position.row pos := line]> |>)
  end.
(* editor_core/src/buffer.rs:85-99 TextBuffer::insert_newline *)
Definition insert_newline (pos : Position.t) (b : t) : outcome (bool * t) :=
  match lines b !! Position.row pos with
  | None => Return (false, b)
  | Some line =>
      if Str.len line <? Position.col pos then Return (false, b)
      else
        '(line, rest) ← expect (Str.split_at (Position.col pos) line);
        Return (true, b <| lines ::= λ l,
          vec_insert (Position.row pos + 1) rest (<[Position.row pos := line]> l) |>)
  end.
(* editor_core/src/buffer.rs:101-114 TextBuffer::delete_char *)
Definition delete_char (pos : Position.t) (b : t) : outcome (bool * t) :=
  match lines b !! Position.row pos with
  | None => Return (false, b)
  | Some line =>
      if Str.len line <=? Position.col pos then Return (false, b)
      else
        line ← Str.remove (Position.col pos) line;
        Return (true, b <| lines ::= <[Position.row pos := line]> |>)
  end.
(** Indexing out of range and [Vec::remove] out of range panic. *)
(* editor_core/src/buffer.rs:116-134 TextBuffer::backspace *)
Definition backspace (pos : Position.t) (b : t) : outcome (option Position.t * t) :=
  if 0 <? Position.col pos then
    line ← expect (lines b !! Position.row pos);
    line ← Str.remove (Position.col pos - 1) line;
    Return (Some (Position.new (Position.row pos) (Position.col pos - 1)),
            b <| lines ::= <[Position.row pos := line]> |>)
  else if 0 <? Position.row pos then
    current_line ← expect (lines b !! Position.row pos);
    let ls := delete (Position.row pos) (lines b) in
    prev_line ← expect (ls !! (Position.row pos - 1));
    Return (Some (Position.new (Position.row pos - 1) (Str.len prev_line)),
            mk (<[Position.row pos - 1 := prev_line ++ current_line]> ls))
  else Return (None, b).
(* editor_core/src/buffer.rs:136-149 TextBuffer::delete_line *)
Definition delete_line (row : nat) (b : t) : bool * t :=
  if length (lines b) <=? row then (false, b)
  else if 1 <? length (lines b) then (true, b <| lines ::= delete row |>)
  else (true, b <| lines ::= <[row := []]> |>).
(* editor_core/src/buffer.rs:151-153 TextBuffer::is_empty *)
Definition is_empty (b : t) : bool := match lines b with [[]] => true | _ => false end.
End TextBuffer.

(** ** Keys, modes and commands *)

Module EditorKey.
(* editor_core/src/key.rs:6-45 Key *)
Inductive t :=
| Char (c : N)
| Left | Right | Up | Down
| Enter | Backspace | Delete | Escape | Tab | Space
| H | J | K | L | I | A | X | D | U | N_
| Colon | Slash | CtrlR.
(* editor_core/src/key.rs:48-71 Key::from_ascii *)
Definition from_ascii (byte : N) : option t :=
  match byte with
  | 0x1B => Some Escape
  | 0x08 | 0x7F => Some Backspace
  | 13 | 10 => Some Enter
  | 9 => Some Tab
  | 32 => Some Space
  | 58 => Some Colon
  | 47 => Some Slash
  | 104 => Some H
  | 106 => Some J
  | 107 => Some K
  | 108 => Some L
  | 105 => Some I
  | 97 => Some A
  | 120 => Some X
  | 100 => Some D
  | 117 => Some U
  | 110 => Some N_
  | ch => if ((0x20 <=? ch) && (ch <? 0x7F))%N then Some (Char ch) else None
  end%N.
End EditorKey.

Module EditorMode.
(* editor_core/src/mode.rs:6-18 EditorMode *)
Inductive t := Normal | Insert | Command | Search.
#[global] Instance eq_dec : EqDecision t.
Proof. solve_decision. Defined.
(* editor_core/src/mode.rs:21-28 EditorMode::as_str *)
Definition as_str (m : t) : string :=
  match m with Normal => "NORMAL" | Insert => "INSERT" | Command => "COMMAND" | Search => "SEARCH" end.
End EditorMode.

Module EditorCommand.
(* editor_core/src/command.rs:5-18 Command *)
Inductive t :=
| Quit (force : bool)
| Write
| WriteAs (path : Str.t)
| WriteQuit
| Unknown (cmd : Str.t).
(* editor_core/src/command.rs:35-50 parse_command *)
Definition parse_command (cmd_str : Str.t) : t :=
  let trimmed := Str.trim cmd_str in
  if decide (trimmed = Str.of_string "q") then Quit false
  else if decide (trimmed = Str.of_string "q!") then Quit true
  else if decide (trimmed = Str.of_string "w") then Write
  else if decide (trimmed = Str.of_string "wq") then WriteQuit
  else if Str.starts_with (Str.of_string "w ") trimmed then WriteAs (Str.trim (drop 2 trimmed))
  else Unknown trimmed.
End EditorCommand.

(** ** The state machine ([editor_core/src/core.rs]) *)

Module BufferSnapshot.
(* editor_core/src/core.rs:17-22 BufferSnapshot *)
Record t := mk { buffer : TextBuffer.t; cursor : Position.t }.
End BufferSnapshot.

Module CoreIoRequest.
(* editor_core/src/core.rs:39-48 CoreIoRequest *)
Inductive t := Save | SaveAs (path : Str.t) | SaveAndQuit.
End CoreIoRequest.

Module CoreOutcome.
(* editor_core/src/core.rs:24-37 CoreOutcome *)
Inductive t :=
| Continue
| Changed
| RequestExit (forced : bool)
| StatusMessage (msg : Str.t)
| RequestIo (r : CoreIoRequest.t).
End CoreOutcome.

Module EditorSnapshot.
(* editor_core/src/snapshot.rs:10-22 EditorSnapshot *)
Record t := mk {
  mode : EditorMode.t;
  cursor : Position.t;
  buffer_lines : list Str.t;
  dirty : bool;
  command_buffer : Str.t;
  search_query : Str.t;
  undo_depth : nat;
  redo_depth : nat
}.
End EditorSnapshot.

Module EditorCore.
(* editor_core/src/core.rs:50-62 EditorCore *)
Record t := mk {
  mode : EditorMode.t;
  buffer : TextBuffer.t;
  cursor : Position.t;
  dirty : bool;
  command_buffer : Str.t;
  search_query : Str.t;
  last_search : option Str.t;
  status_message : Str.t;
  undo_stack : list BufferSnapshot.t;
  redo_stack : list BufferSnapshot.t
}.
#[global] Instance rebuild_t : Rebuild t := λ e,
  mk (mode e) (buffer e) (cursor e) (dirty e) (command_buffer e) (search_query e) (last_search e)
     (status_message e) (undo_stack e) (redo_stack e).
(* editor_core/src/core.rs:65-79 EditorCore::new *)
Definition new : t :=
  mk EditorMode.Normal TextBuffer.new Position.zero false [] [] None [] [] [].
(* editor_core/src/core.rs:91-103 EditorCore::snapshot *)
Definition snapshot (e : t) : EditorSnapshot.t :=
  EditorSnapshot.mk (mode e) (cursor e) (TextBuffer.lines (buffer e)) (dirty e) (command_buffer e)
    (search_query e) (length (undo_stack e)) (length (redo_stack e)).

Definition msg (s : string) : CoreOutcome.t := CoreOutcome.StatusMessage (Str.of_string s).

(** *** Cursor *)
(* editor_core/src/core.rs:552-557 EditorCore::clamp_cursor *)
Definition clamp_cursor (e : t) : t :=
  let line_len := TextBuffer.line_length (Position.row (cursor e)) (buffer e) in
  if line_len <? Position.col (cursor e) then e <| cursor ::= λ p, p <| Position.col := line_len |> |>
  else e.
(* editor_core/src/core.rs:525-530 EditorCore::move_cursor_up *)
Definition move_cursor_up (e : t) : t :=
  if 0 <? Position.row (cursor e)
  then clamp_cursor (e <| cursor ::= λ p, p <| Position.row ::= λ r, r - 1 |> |>) else e.
(* editor_core/src/core.rs:532-537 EditorCore::move_cursor_down *)
Definition move_cursor_down (e : t) : t :=
  if Position.row (cursor e) <? TextBuffer.line_count (buffer e) - 1
  then clamp_cursor (e <| cursor ::= λ p, p <| Position.row ::= S |> |>) else e.
(* editor_core/src/core.rs:539-543 EditorCore::move_cursor_left *)
Definition move_cursor_left (e : t) : t :=
  if 0 <? Position.col (cursor e)
  then e <| cursor ::= λ p, p <| Position.col ::= λ c, c - 1 |> |> else e.
(* editor_core/src/core.rs:545-550 EditorCore::move_cursor_right *)
Definition move_cursor_right (e : t) : t :=
  if Position.col (cursor e) <? TextBuffer.line_length (Position.row (cursor e)) (buffer e)
  then e <| cursor ::= λ p, p <| Position.col ::= S |> |> else e.

(** *** Undo and redo *)
(* editor_core/src/core.rs:400-416 EditorCore::save_undo_snapshot *)
Definition save_undo_snapshot (e : t) : t :=
  let MAX_UNDO_STACK := 100 in
  let stack := undo_stack e ++ [BufferSnapshot.mk (buffer e) (cursor e)] in
  let e := e <| undo_stack := stack |> <| redo_stack := [] |> in
  if MAX_UNDO_STACK <? length stack then e <| undo_stack ::= tail |> else e.
(** [Vec::pop]. *)
Definition pop {A} (l : list A) : option (A * list A) :=
  match last l with Some x => Some (x, take (length l - 1) l) | None => None end.
(* editor_core/src/core.rs:418-435 EditorCore::undo *)
Definition undo (e : t) : bool * t :=
  match pop (undo_stack e) with
  | None => (false, e)
  | Some (snap, rest) =>
      let current := BufferSnapshot.mk (buffer e) (cursor e) in
      (true, e <| undo_stack := rest |> <| redo_stack ::= λ l, l ++ [current] |>
               <| buffer := BufferSnapshot.buffer snap |> <| cursor := BufferSnapshot.cursor snap |>
               <| dirty := true |>)
  end.
(* editor_core/src/core.rs:437-454 EditorCore::redo *)
Definition redo (e : t) : bool * t :=
  match pop (redo_stack e) with
  | None => (false, e)
  | Some (snap, rest) =>
      let current := BufferSnapshot.mk (buffer e) (cursor e) in
      (true, e <| redo_stack := rest |> <| undo_stack ::= λ l, l ++ [current] |>
               <| buffer := BufferSnapshot.buffer snap |> <| cursor := BufferSnapshot.cursor snap |>
               <| dirty := true |>)
  end.

(** *** Search *)
(** [while row < line_count]: the lines from [row] on, the first one from byte [col];
    [line[col..]] panics inside a character. *)
(* editor_core/src/core.rs:486-497 EditorCore::find_next *)
Fixpoint search_forward (query : Str.t) (ls : list Str.t) (row col : nat)
    : outcome (option Position.t) :=
  match ls with
  | [] => Return None
  | line :: ls =>
      found ← (if col <? Str.len line
               then '(_, rest) ← expect (Str.split_at col line); Return (Str.find query rest)
               else Return None);
      match found with
      | Some pos => Return (Some (Position.new row (col + pos)))
      | None => search_forward query ls (S row) 0
      end
  end.
(* editor_core/src/core.rs:500-507 EditorCore::find_next *)
Fixpoint search_rows (query : Str.t) (ls : list Str.t) (row : nat) : option Position.t :=
  match ls with
  | [] => None
  | line :: ls =>
      match Str.find query line with
      | Some pos => Some (Position.new row pos)
      | None => search_rows query ls (S row)
      end
  end.
(* editor_core/src/core.rs:456-521 EditorCore::find_next *)
Definition find_next (e : t) : outcome (bool * t) :=
  let '(query, e) :=
    match search_query e with
    | [] => (last_search e, e)
    | q => (Some q, e <| last_search := Some q |>)
    end in
  match query with
  | None | Some [] => Return (false, e)
  | Some q =>
      let start_pos := cursor e in
      let fresh := match search_query e with [] => false | _ => true end in
      let start_col := if fresh then Position.col start_pos else Position.col start_pos + 1 in
      found ← search_forward q (drop (Position.row start_pos) (TextBuffer.lines (buffer e)))
                (Position.row start_pos) start_col;
      match found with
      | Some p => Return (true, e <| cursor := p |>)
      | None =>
          match search_rows q (take (Position.row start_pos) (TextBuffer.lines (buffer e))) 0 with
          | Some p => Return (true, e <| cursor := p |>)
          | None =>
              match fresh, TextBuffer.line (Position.row start_pos) (buffer e) with
              | false, Some line =>
                  '(head, _) ← expect (Str.split_at (Nat.min (Position.col start_pos) (Str.len line)) line);
                  match Str.find q head with
                  | Some pos => Return (true, e <| cursor := Position.new (Position.row start_pos) pos |>)
                  | None => Return (false, e)
                  end
              | _, _ => Return (false, e)
              end
          end
      end
  end.

(** *** Modes *)
(* editor_core/src/core.rs:134-146 EditorCore::insert_char_in_insert_mode *)
Definition insert_char_in_insert_mode (ch : N) (e : t) : outcome (CoreOutcome.t * t) :=
  let e := save_undo_snapshot e in
  '(ok, b) ← TextBuffer.insert_char (cursor e) ch (buffer e);
  if ok : bool
  then Return (CoreOutcome.Changed, e <| buffer := b |> <| cursor ::= λ p, p <| Position.col ::= S |> |>
                                      <| dirty := true |>)
  else Return (CoreOutcome.Continue, e <| buffer := b |>).
(* editor_core/src/core.rs:372-398 EditorCore::execute_command *)
Definition execute_command (e : t) : CoreOutcome.t :=
  match EditorCommand.parse_command (command_buffer e) with
  | EditorCommand.Quit force =>
      if dirty e && negb force then msg "No write since last change (use :q! to override)"
      else CoreOutcome.RequestExit force
  | EditorCommand.Write => CoreOutcome.RequestIo CoreIoRequest.Save
  | EditorCommand.WriteAs path => CoreOutcome.RequestIo (CoreIoRequest.SaveAs path)
  | EditorCommand.WriteQuit =>
      if dirty e then CoreOutcome.RequestIo CoreIoRequest.SaveAndQuit
      else CoreOutcome.RequestExit false
  | EditorCommand.Unknown cmd =>
      CoreOutcome.StatusMessage (Str.of_string "Unknown command: " ++ cmd)
  end.
(* editor_core/src/core.rs:148-248 EditorCore::handle_normal_mode *)
Definition handle_normal_mode (key : EditorKey.t) (e : t) : outcome (CoreOutcome.t * t) :=
  match key with
  | EditorKey.I => Return (CoreOutcome.Changed, e <| mode := EditorMode.Insert |>)
  | EditorKey.A =>
      let e := e <| mode := EditorMode.Insert |> in
      let line_len := TextBuffer.line_length (Position.row (cursor e)) (buffer e) in
      Return (CoreOutcome.Changed,
              if Position.col (cursor e) <? line_len
              then e <| cursor ::= λ p, p <| Position.col ::= S |> |> else e)
  | EditorKey.H | EditorKey.Left => Return (CoreOutcome.Changed, move_cursor_left e)
  | EditorKey.J | EditorKey.Down => Return (CoreOutcome.Changed, move_cursor_down e)
  | EditorKey.K | EditorKey.Up => Return (CoreOutcome.Changed, move_cursor_up e)
  | EditorKey.L | EditorKey.Right => Return (CoreOutcome.Changed, move_cursor_right e)
  | EditorKey.X =>
      let e := save_undo_snapshot e in
      '(ok, b) ← TextBuffer.delete_char (cursor e) (buffer e);
      let e := e <| buffer := b |> in
      if ok : bool then Return (CoreOutcome.Changed, e <| dirty := true |>)
      else Return (CoreOutcome.Continue, e)
  | EditorKey.D =>
      let e := save_undo_snapshot e in
      let '(ok, b) := TextBuffer.delete_line (Position.row (cursor e)) (buffer e) in
      let e := e <| buffer := b |> in
      if ok : bool
      then
        let e := e <| dirty := true |> in
        let e := if TextBuffer.line_count (buffer e) <=? Position.row (cursor e)
                 then e <| cursor ::= λ p, p <| Position.row := TextBuffer.line_count (buffer e) - 1 |> |>
                 else e in
        Return (CoreOutcome.Changed, clamp_cursor e)
      else Return (CoreOutcome.Continue, e)
  | EditorKey.U =>
      let '(ok, e) := undo e in
      Return (if ok : bool then msg "Undo" else msg "Already at oldest change", e)
  | EditorKey.CtrlR =>
      let '(ok, e) := redo e in
      Return (if ok : bool then msg "Redo" else msg "Already at newest change", e)
  | EditorKey.Colon =>
      Return (CoreOutcome.Changed, e <| mode := EditorMode.Command |> <| command_buffer := [] |>)
  | EditorKey.Slash =>
      Return (CoreOutcome.Changed, e <| mode := EditorMode.Search |> <| search_query := [] |>)
  | EditorKey.N_ =>
      '(ok, e) ← find_next e;
      Return (if ok : bool then CoreOutcome.Changed else msg "Pattern not found", e)
  | _ => Return (CoreOutcome.Continue, e)
  end.
(** The character that a key types in insert mode. *)
(* editor_core/src/core.rs:262-275 EditorCore::handle_insert_mode *)
Definition typed (key : EditorKey.t) : option N :=
  match key with
  | EditorKey.Char ch => Some ch
  | EditorKey.I => Some 105%N
  | EditorKey.A => Some 97%N
  | EditorKey.H => Some 104%N
  | EditorKey.J => Some 106%N
  | EditorKey.K => Some 107%N
  | EditorKey.L => Some 108%N
  | EditorKey.X => Some 120%N
  | EditorKey.D => Some 100%N
  | EditorKey.U => Some 117%N
  | EditorKey.N_ => Some 110%N
  | EditorKey.Space => Some 32%N
  | _ => None
  end.
(* editor_core/src/core.rs:250-299 EditorCore::handle_insert_mode *)
Definition handle_insert_mode (key : EditorKey.t) (e : t) : outcome (CoreOutcome.t * t) :=
  match key with
  | EditorKey.Escape =>
      let e := e <| mode := EditorMode.Normal |> in
      let e := if 0 <? Position.col (cursor e)
               then e <| cursor ::= λ p, p <| Position.col ::= λ c, c - 1 |> |> else e in
      Return (CoreOutcome.Changed, clamp_cursor e)
  | EditorKey.Enter =>
      let e := save_undo_snapshot e in
      '(ok, b) ← TextBuffer.insert_newline (cursor e) (buffer e);
      let e := e <| buffer := b |> in
      if ok : bool
      then Return (CoreOutcome.Changed,
                   e <| cursor := Position.new (S (Position.row (cursor e))) 0 |> <| dirty := true |>)
      else Return (CoreOutcome.Continue, e)
  | EditorKey.Backspace =>
      let e := save_undo_snapshot e in
      '(p, b) ← TextBuffer.backspace (cursor e) (buffer e);
      let e := e <| buffer := b |> in
      match p with
      | Some new_pos => Return (CoreOutcome.Changed, e <| cursor := new_pos |> <| dirty := true |>)
      | None => Return (CoreOutcome.Continue, e)
      end
  | _ =>
      match typed key with
      | Some ch => insert_char_in_insert_mode ch e
      | None => Return (CoreOutcome.Continue, e)
      end
  end.
(** [String::pop] on the typed command or query. *)
Definition pop_char (s : Str.t) : Str.t := take (length s - 1) s.
(* editor_core/src/core.rs:301-333 EditorCore::handle_command_mode *)
Definition handle_command_mode (key : EditorKey.t) (e : t) : CoreOutcome.t * t :=
  match key with
  | EditorKey.Escape =>
      (CoreOutcome.Changed, e <| mode := EditorMode.Normal |> <| command_buffer := [] |>)
  | EditorKey.Enter =>
      let outcome := execute_command e in
      (outcome, match outcome with
                | CoreOutcome.RequestExit _ => e
                | _ => e <| mode := EditorMode.Normal |>
                end)
  | EditorKey.Backspace => (CoreOutcome.Changed, e <| command_buffer ::= pop_char |>)
  | EditorKey.Char ch => (CoreOutcome.Changed, e <| command_buffer ::= λ s, s ++ [ch] |>)
  | EditorKey.Space => (CoreOutcome.Changed, e <| command_buffer ::= λ s, s ++ [32%N] |>)
  | _ => (CoreOutcome.Continue, e)
  end.
(* editor_core/src/core.rs:335-370 EditorCore::handle_search_mode *)
Definition handle_search_mode (key : EditorKey.t) (e : t) : outcome (CoreOutcome.t * t) :=
  match key with
  | EditorKey.Escape =>
      Return (CoreOutcome.Changed, e <| mode := EditorMode.Normal |> <| search_query := [] |>)
  | EditorKey.Enter =>
      '(ok, e) ← find_next e;
      Return (if ok : bool then CoreOutcome.Changed else msg "Pattern not found",
              e <| mode := EditorMode.Normal |> <| search_query := [] |>)
  | EditorKey.Backspace => Return (CoreOutcome.Changed, e <| search_query ::= pop_char |>)
  | EditorKey.Char ch => Return (CoreOutcome.Changed, e <| search_query ::= λ s, s ++ [ch] |>)
  | EditorKey.Space => Return (CoreOutcome.Changed, e <| search_query ::= λ s, s ++ [32%N] |>)
  | _ => Return (CoreOutcome.Continue, e)
  end.
(* editor_core/src/core.rs:81-89 EditorCore::apply_key *)
Definition apply_key (key : EditorKey.t) (e : t) : outcome (CoreOutcome.t * t) :=
  match mode e with
  | EditorMode.Normal => handle_normal_mode key e
  | EditorMode.Insert => handle_insert_mode key e
  | EditorMode.Command => Return (handle_command_mode key e)
  | EditorMode.Search => handle_search_mode key e
  end.
(* editor_core/src/core.rs:559-566 EditorCore::load_content *)
Definition load_content (content : Str.t) (e : t) : t :=
  e <| buffer := TextBuffer.from_string content |> <| cursor := Position.zero |>
    <| dirty := false |> <| undo_stack := [] |> <| redo_stack := [] |>.
(* editor_core/src/core.rs:568-570 EditorCore::mark_saved *)
Definition mark_saved (e : t) : t := e <| dirty := false |>.
End EditorCore.
