(* ===== verification/EditorProps.v ===== *)
(** * Properties of the editor core

    On ASCII text the editor never panics and the cursor stays inside the text; undo and redo
    are inverse; a clean buffer is the saved one, so an unforced exit loses nothing; what a
    search finds is there; buffers survive saving and loading.  Concrete theorems show where
    the code goes wrong: characters of several bytes, matches before the cursor, a trailing
    empty line. *)

From S2P Require Import Prelude Editor.
Open Scope nat_scope.
#[local] Arguments Nat.ltb : simpl never.
#[local] Arguments Nat.leb : simpl never.

Module StrSpec.
Definition ascii (s : Str.t) : Prop := Forall (λ c, c < 128)%N s.

Lemma len_ascii s : ascii s → Str.len s = length s.
Proof.
  induction 1 as [|c s Hc _ IH]; cbn; [done|]. unfold Str.len_utf8.
  rewrite (proj2 (N.ltb_lt _ _) Hc), IH. done.
Qed.

Lemma split_at_ascii i s : ascii s → i ≤ length s → Str.split_at i s = Some (take i s, drop i s).
Proof.
  intros Hs. revert i. induction Hs as [|c s Hc _ IH]; intros [|i] Hi; [done|cbn in Hi; lia|done|].
  cbn [Str.split_at length] in *.
  assert (Str.len_utf8 c = 1) as -> by (unfold Str.len_utf8; by rewrite (proj2 (N.ltb_lt _ _) Hc)).
  rewrite (proj2 (Nat.leb_le _ _)) by lia. replace (S i - 1) with i by lia. rewrite IH by lia. done.
Qed.

Lemma str_len_app s t : Str.len (s ++ t) = Str.len s + Str.len t.
Proof. induction s as [|c s IH]; cbn; [done|]. rewrite IH. lia. Qed.

(** Splitting undoes appending at the boundary, whatever the characters. *)
Lemma len_utf8_pos c : 1 ≤ Str.len_utf8 c.
Proof. unfold Str.len_utf8. repeat destruct (_ <? _)%N; lia. Qed.
Lemma split_at_app s t : Str.split_at (Str.len s) (s ++ t) = Some (s, t).
Proof.
  induction s as [|c s IH]; [by destruct t|]. cbn [Str.len app].
  pose proof (len_utf8_pos c). destruct (Str.len_utf8 c + Str.len s) as [|n] eqn:E; [lia|].
  cbn [Str.split_at]. rewrite <- E, (proj2 (Nat.leb_le _ _)) by lia.
  replace (Str.len_utf8 c + Str.len s - Str.len_utf8 c) with (Str.len s) by lia. by rewrite IH.
Qed.
Lemma split_at_Some i s a b : Str.split_at i s = Some (a, b) → s = a ++ b ∧ Str.len a = i.
Proof.
  revert i a b. induction s as [|c s IH]; intros [|i] a b; cbn; try done; try (by intros [= <- <-]).
  destruct (Nat.leb_spec (Str.len_utf8 c) (S i)) as [Hle|]; [|done].
  destruct (Str.split_at _ s) as [[a' b']|] eqn:E; [|done]. cbn. intros [= <- <-].
  apply IH in E as [-> El]. split; [done|]. cbn. lia.
Qed.

Lemma starts_with_spec q s : Str.starts_with q s = true ↔ ∃ t, s = q ++ t.
Proof.
  revert s. induction q as [|c q IH]; intros s; cbn; [split; [by exists s|done]|].
  destruct s as [|d s]; [split; [done|by intros [? ?]]|].
  rewrite andb_true_iff, N.eqb_eq, IH. naive_solver.
Qed.
(** What is found is there. *)
Lemma find_Some q s n : Str.find q s = Some n → ∃ a b, s = a ++ q ++ b ∧ Str.len a = n.
Proof.
  revert n. induction s as [|c s IH]; intros n; cbn.
  - destruct (Str.starts_with q []) eqn:E; [|done]. intros [= <-].
    apply starts_with_spec in E as [t E]. by exists [], t.
  - destruct (Str.starts_with q (c :: s)) eqn:E.
    + intros [= <-]. apply starts_with_spec in E as [t E]. by exists [], t.
    + destruct (Str.find q s) as [m|]; [|done]. cbn. intros [= <-].
      destruct (IH m eq_refl) as (a & b & -> & <-). by exists (c :: a), b.
Qed.
Lemma find_None q s : Str.find q s = None → ∀ a b, s ≠ a ++ q ++ b.
Proof.
  induction s as [|c s IH]; cbn.
  - destruct (Str.starts_with q []) eqn:E; [done|]. intros _ a b Hab.
    symmetry in Hab. apply app_eq_nil in Hab as [_ Hab].
    assert (Str.starts_with q [] = true) as E'; [|congruence]. apply starts_with_spec. by exists b.
  - destruct (Str.starts_with q (c :: s)) eqn:E; [done|].
    destruct (Str.find q s) eqn:Ef; [done|]. intros _ a b Hab. destruct a as [|x a]; cbn in Hab.
    + assert (Str.starts_with q (c :: s) = true) as E'; [|congruence]. apply starts_with_spec. by exists b.
    + injection Hab as -> Hab. by apply (IH eq_refl a b).
Qed.
End StrSpec.

Module EditorSafety.
Import StrSpec.

(** A position inside a text. *)
Definition inside (ls : list Str.t) (p : Position.t) : Prop :=
  ∃ line, ls !! Position.row p = Some line ∧ Position.col p ≤ Str.len line.
Definition text_ok (b : TextBuffer.t) (p : Position.t) : Prop :=
  Forall ascii (TextBuffer.lines b) ∧ inside (TextBuffer.lines b) p.
Definition snap_ok (s : BufferSnapshot.t) : Prop :=
  text_ok (BufferSnapshot.buffer s) (BufferSnapshot.cursor s).
Record state_ok (e : EditorCore.t) : Prop := {
  ok_text : text_ok (EditorCore.buffer e) (EditorCore.cursor e);
  ok_undo : Forall snap_ok (EditorCore.undo_stack e);
  ok_redo : Forall snap_ok (EditorCore.redo_stack e)
}.
Definition key_ok (k : EditorKey.t) : Prop :=
  match k with EditorKey.Char c => (c < 128)%N | _ => True end.

(** A step keeps the state in order when it does not touch the text. *)
Lemma ok_other e e' :
  state_ok e → EditorCore.buffer e' = EditorCore.buffer e → EditorCore.cursor e' = EditorCore.cursor e →
  EditorCore.undo_stack e' = EditorCore.undo_stack e → EditorCore.redo_stack e' = EditorCore.redo_stack e →
  state_ok e'.
Proof. intros [Ht Hu Hr] E1 E2 E3 E4. split; rewrite ?E1, ?E2, ?E3, ?E4; done. Qed.
Lemma ok_text_set e b p :
  state_ok e → text_ok b p → state_ok (e <| EditorCore.buffer := b |> <| EditorCore.cursor := p |>).
Proof. by intros [Ht Hu Hr]. Qed.
Lemma ok_cursor e p :
  state_ok e → inside (TextBuffer.lines (EditorCore.buffer e)) p → state_ok (e <| EditorCore.cursor := p |>).
Proof. intros [[Ha _] Hu Hr] Hp. by split. Qed.

(** *** The buffer *)
Section buffer.
Context (b : TextBuffer.t) (p : Position.t) (Hok : text_ok b p).
Notation ls := (TextBuffer.lines b).
Notation r := (Position.row p).
Notation c := (Position.col p).

Lemma line_at : ∃ line, ls !! r = Some line ∧ ascii line ∧ c ≤ length line ∧ Str.len line = length line.
Proof.
  destruct Hok as [Ha (line & El & Hc)]. rewrite Forall_lookup in Ha. pose proof (Ha _ _ El) as Hl.
  exists line. pose proof (len_ascii line Hl). split_and!; (done || lia).
Qed.

Lemma set_line_ok line' c' :
  ascii line' → c' ≤ length line' →
  text_ok (TextBuffer.mk (<[r := line']> ls)) (Position.new r c').
Proof.
  intros Ha Hc. destruct line_at as (line & El & _). destruct Hok as [Hall _]. split; cbn.
  - by apply Forall_insert.
  - exists line'. cbn. rewrite list_lookup_insert_eq by (by eapply lookup_lt_Some).
    by rewrite len_ascii.
Qed.

Lemma insert_char_ok ch :
  (ch < 128)%N →
  ∃ b', TextBuffer.insert_char p ch b = Return (true, b') ∧ text_ok b' (Position.new r (S c)).
Proof.
  intros Hch. destruct line_at as (line & El & Ha & Hc & Elen). unfold TextBuffer.insert_char.
  rewrite El, Elen, (proj2 (Nat.ltb_ge _ _)) by done. unfold Str.insert.
  rewrite split_at_ascii by done. cbn. eexists. split; [done|]. apply set_line_ok.
  - apply Forall_app. split; [by apply Forall_take|]. constructor; [done|by apply Forall_drop].
  - rewrite length_app. cbn. rewrite length_take, length_drop. lia.
Qed.

Lemma delete_char_ok :
  ∃ ok b', TextBuffer.delete_char p b = Return (ok, b') ∧ text_ok b' p.
Proof.
  destruct line_at as (line & El & Ha & Hc & Elen). unfold TextBuffer.delete_char. rewrite El, Elen.
  destruct (Nat.leb_spec (length line) c) as [|Hlt]; [by eexists _, _|]. unfold Str.remove.
  rewrite split_at_ascii by (done || lia). cbn. destruct (drop c line) as [|x rest] eqn:Ed.
  { apply (f_equal length) in Ed. rewrite length_drop in Ed. cbn in Ed. lia. }
  eexists _, _. split; [done|].
  pose proof (Forall_drop _ c _ Ha) as Hd. rewrite Ed in Hd. inversion_clear Hd.
  apply (f_equal length) in Ed as El'. rewrite length_drop in El'. cbn in El'.
  assert (text_ok (TextBuffer.mk (<[r := take c line ++ rest]> ls)) (Position.new r c)) as Hnew.
  { apply set_line_ok; [apply Forall_app; split; [by apply Forall_take|done]|].
    rewrite length_app, length_take. lia. }
  destruct p. exact Hnew.
Qed.

Lemma insert_newline_ok :
  ∃ b', TextBuffer.insert_newline p b = Return (true, b') ∧ text_ok b' (Position.new (S r) 0).
Proof.
  destruct line_at as (line & El & Ha & Hc & Elen). unfold TextBuffer.insert_newline.
  rewrite El, Elen, (proj2 (Nat.ltb_ge _ _)), split_at_ascii by done. cbn. eexists. split; [done|].
  destruct (set_line_ok (take c line) 0) as [Hall _]; [by apply Forall_take|lia|]. cbn in Hall.
  apply lookup_lt_Some in El as Hr. split; cbn.
  - rewrite vec_insert_Permutation. constructor; [by apply Forall_drop|done].
  - exists (drop c line). split; [|cbn; lia]. cbn. unfold vec_insert.
    rewrite lookup_app_r by (rewrite length_take, length_insert; lia).
    rewrite length_take, length_insert. replace (S r - _) with 0 by lia. done.
Qed.

Lemma backspace_ok :
  ∃ p' b', TextBuffer.backspace p b = Return (p', b') ∧ text_ok b' (default p p').
Proof.
  destruct line_at as (line & El & Ha & Hc & Elen). unfold TextBuffer.backspace.
  rewrite El. cbn [expect mbind outcome_bind]. destruct (Nat.ltb_spec 0 c) as [Hpos|Hz].
  - unfold Str.remove. rewrite split_at_ascii by (done || lia). cbn.
    destruct (drop (c - 1) line) as [|x rest] eqn:Ed.
    { apply (f_equal length) in Ed. rewrite length_drop in Ed. cbn in Ed. lia. }
    eexists _, _. split; [done|]. cbn. pose proof (Forall_drop _ (c - 1) _ Ha) as Hd. rewrite Ed in Hd.
    inversion_clear Hd. apply set_line_ok.
    + apply Forall_app. split; [by apply Forall_take|done].
    + rewrite length_app, length_take. lia.
  - destruct (Nat.ltb_spec 0 r) as [Hr|Hr]; [|by eexists _, _].
    apply lookup_lt_Some in El as Hlt.
    destruct (lookup_lt_is_Some_2 ls (r - 1)) as [prev Ep]; [lia|].
    rewrite list_lookup_delete_lt by lia. rewrite Ep. cbn. eexists _, _. split; [done|]. cbn.
    destruct Hok as [Hall _]. pose proof (proj1 (Forall_lookup _ _) Hall _ _ Ep) as Hp. split; cbn.
    + apply Forall_insert; [by apply Forall_delete|]. by apply Forall_app.
    + eexists. cbn. rewrite list_lookup_insert_eq; [split; [done|]|].
      * rewrite str_len_app. lia.
      * rewrite length_delete by (by eexists). lia.
Qed.
End buffer.

(** *** The state machine *)
Lemma ok_save e : state_ok e → state_ok (EditorCore.save_undo_snapshot e).
Proof.
  intros [Ht Hu Hr]. unfold EditorCore.save_undo_snapshot. cbn zeta.
  assert (Forall snap_ok (EditorCore.undo_stack e ++
    [BufferSnapshot.mk (EditorCore.buffer e) (EditorCore.cursor e)])) as Hs
    by (apply Forall_app; split; [done|by apply Forall_singleton]).
  destruct (_ <? _); split; cbn; try done; [|constructor..].
  destruct (EditorCore.undo_stack e ++ _); [done|by inversion_clear Hs].
Qed.

Lemma save_keeps e :
  EditorCore.buffer (EditorCore.save_undo_snapshot e) = EditorCore.buffer e ∧
  EditorCore.cursor (EditorCore.save_undo_snapshot e) = EditorCore.cursor e ∧
  EditorCore.dirty (EditorCore.save_undo_snapshot e) = EditorCore.dirty e ∧
  EditorCore.mode (EditorCore.save_undo_snapshot e) = EditorCore.mode e.
Proof. unfold EditorCore.save_undo_snapshot. cbn zeta. by destruct (_ <? _). Qed.

Lemma pop_Some {A} (l : list A) x r : EditorCore.pop l = Some (x, r) ↔ l = r ++ [x].
Proof.
  unfold EditorCore.pop. destruct l as [|y l] using rev_ind; cbn; [split; [done|]|].
  - intros E. by apply (f_equal length) in E; rewrite length_app in E; cbn in E; lia.
  - rewrite last_snoc, length_app. cbn. rewrite Nat.add_sub, take_app_length. split.
    + by intros [= -> ->].
    + intros E. by apply app_inj_tail in E as [-> ->].
Qed.
Lemma pop_None {A} (l : list A) : EditorCore.pop l = None ↔ l = [].
Proof. unfold EditorCore.pop. destruct l using rev_ind; [done|]. rewrite last_snoc. split; [done|]. by destruct l. Qed.

Lemma ok_undo_step e : state_ok e → state_ok (EditorCore.undo e).2.
Proof.
  intros [Ht Hu Hr]. unfold EditorCore.undo. destruct (EditorCore.pop _) as [[s r]|] eqn:E; [|done].
  apply pop_Some in E. rewrite E in Hu. apply Forall_app in Hu as [Hu Hs]. inversion_clear Hs.
  split; cbn; [done|done|]. apply Forall_app. split; [done|]. by apply Forall_singleton.
Qed.
Lemma ok_redo_step e : state_ok e → state_ok (EditorCore.redo e).2.
Proof.
  intros [Ht Hu Hr]. unfold EditorCore.redo. destruct (EditorCore.pop _) as [[s r]|] eqn:E; [|done].
  apply pop_Some in E. rewrite E in Hr. apply Forall_app in Hr as [Hr Hs]. inversion_clear Hs.
  split; cbn; [done| |done]. apply Forall_app. split; [done|]. by apply Forall_singleton.
Qed.

Lemma ok_clamp b r c u v e :
  Forall ascii (TextBuffer.lines b) → r < length (TextBuffer.lines b) →
  Forall snap_ok u → Forall snap_ok v →
  EditorCore.buffer e = b → EditorCore.cursor e = Position.new r c →
  EditorCore.undo_stack e = u → EditorCore.redo_stack e = v →
  state_ok (EditorCore.clamp_cursor e).
Proof.
  intros Ha Hr Hu Hv Eb Ec Eu Ev. unfold EditorCore.clamp_cursor, TextBuffer.line_length. rewrite Ec, Eb. cbn.
  destruct (lookup_lt_is_Some_2 _ _ Hr) as [line El]. rewrite El. cbn.
  destruct (Nat.ltb_spec (Str.len line) c); split; cbn; rewrite ?Eu, ?Ev, ?Eb, ?Ec; try done.
  - split; [done|]. exists line. cbn. by rewrite El.
  - split; [done|]. exists line. cbn. split; [done|lia].
Qed.

Lemma position_eta p : p = Position.new (Position.row p) (Position.col p).
Proof. by destruct p. Qed.

(** Anything left of the cursor in the line is inside. *)
Lemma inside_left ls p c : inside ls p → c ≤ Position.col p → inside ls (Position.new (Position.row p) c).
Proof. intros (line & El & Hc) Hle. exists line. cbn. split; [done|lia]. Qed.

Lemma ok_moves e :
  state_ok e →
  state_ok (EditorCore.move_cursor_left e) ∧ state_ok (EditorCore.move_cursor_right e) ∧
  state_ok (EditorCore.move_cursor_up e) ∧ state_ok (EditorCore.move_cursor_down e).
Proof.
  intros H. pose proof H as [[Ha Hin] Hu Hv]. pose proof Hin as (line & El & Hc).
  apply lookup_lt_Some in El as Hr. split_and!.
  - unfold EditorCore.move_cursor_left. destruct (_ <? _); [|done].
    apply ok_cursor; [done|]. apply (inside_left _ (EditorCore.cursor e)); [done|cbn; lia].
  - unfold EditorCore.move_cursor_right, TextBuffer.line_length. rewrite El. cbn.
    destruct (Nat.ltb_spec (Position.col (EditorCore.cursor e)) (Str.len line)); [|done].
    apply ok_cursor; [done|]. exists line. cbn. split; [done|lia].
  - unfold EditorCore.move_cursor_up. destruct (_ <? _); [|done].
    eapply ok_clamp; [exact Ha| |exact Hu|exact Hv|done..]. cbn. lia.
  - unfold EditorCore.move_cursor_down, TextBuffer.line_count.
    destruct (Nat.ltb_spec (Position.row (EditorCore.cursor e)) (length (TextBuffer.lines (EditorCore.buffer e)) - 1)); [|done].
    eapply ok_clamp; [exact Ha| |exact Hu|exact Hv|done..]. cbn. lia.
Qed.

(** *** Search *)
Lemma search_forward_ok q ls row col all :
  Forall ascii all → drop row all = ls →
  ∃ f, EditorCore.search_forward q ls row col = Return f ∧ ∀ p, f = Some p → inside all p.
Proof.
  intros Ha. revert row col. induction ls as [|line ls IH]; intros row col Hd; cbn; [by eexists|].
  assert (all !! row = Some line) as El by (rewrite <- (Nat.add_0_r row), <- lookup_drop, Hd; done).
  assert (drop (S row) all = ls) as Hd' by (rewrite <- Nat.add_1_r, <- drop_drop, Hd; done).
  pose proof (proj1 (Forall_lookup _ _) Ha _ _ El) as Hl. pose proof (len_ascii _ Hl) as Elen.
  destruct (Nat.ltb_spec col (Str.len line)) as [Hlt|].
  - rewrite split_at_ascii by (done || lia). cbn.
    destruct (Str.find q (drop col line)) as [n|] eqn:Ef; cbn.
    + eexists. split; [done|]. intros p [= <-]. exists line. cbn. split; [done|].
      apply find_Some in Ef as (a & b & Eab & <-). apply (f_equal Str.len) in Eab.
      rewrite str_len_app, !(len_ascii (drop _ _)), length_drop in Eab by (by apply Forall_drop). lia.
    + by apply IH.
  - cbn. by apply IH.
Qed.

Lemma search_rows_ok q ls row all :
  (∀ i line, ls !! i = Some line → all !! (row + i) = Some line) →
  ∀ p, EditorCore.search_rows q ls row = Some p → inside all p.
Proof.
  revert row. induction ls as [|line ls IH]; intros row Hall p; cbn; [done|].
  destruct (Str.find q line) as [n|] eqn:Ef.
  - intros [= <-]. exists line. cbn. split; [rewrite <- (Nat.add_0_r row); by apply Hall|].
    apply find_Some in Ef as (a & b & -> & <-). rewrite str_len_app. lia.
  - apply IH. intros i l Hi. rewrite Nat.add_succ_comm. by apply (Hall (S i)).
Qed.

Lemma find_next_ok e :
  state_ok e →
  ∃ ok e', EditorCore.find_next e = Return (ok, e') ∧ state_ok e' ∧
           EditorCore.buffer e' = EditorCore.buffer e ∧ EditorCore.dirty e' = EditorCore.dirty e.
Proof.
  intros Hok. unfold EditorCore.find_next.
  destruct (match EditorCore.search_query e with [] => _ | q => _ end) as [query e1] eqn:E1.
  assert (state_ok e1 ∧ EditorCore.buffer e1 = EditorCore.buffer e ∧ EditorCore.dirty e1 = EditorCore.dirty e)
    as (Hok1 & Eb & Ed).
  { destruct (EditorCore.search_query e); injection E1 as <- <-; (split; [|done]); by eapply ok_other. }
  clear E1 Hok. rewrite <- Eb, <- Ed. clear Eb Ed e. rename e1 into e.
  pose proof Hok1 as [[Ha Hin] _ _]. pose proof Hin as (line & El & Hc).
  destruct query as [[|q0 q]|]; [by eexists _, _..| |by eexists _, _].
  destruct (search_forward_ok (q0 :: q)
    (drop (Position.row (EditorCore.cursor e)) (TextBuffer.lines (EditorCore.buffer e)))
    (Position.row (EditorCore.cursor e))
    (if match EditorCore.search_query e with [] => false | _ => true end
     then Position.col (EditorCore.cursor e) else Position.col (EditorCore.cursor e) + 1)
    (TextBuffer.lines (EditorCore.buffer e))) as (f & -> & Hf); [exact Ha|done|].
  cbn [mbind outcome_bind]. destruct f as [p|].
  { eexists _, _. split; [done|]. split; [|done]. apply ok_cursor; [done|]. by apply Hf. }
  destruct (EditorCore.search_rows _ _ 0) as [p|] eqn:Er.
  { eexists _, _. split; [done|]. split; [|done]. apply ok_cursor; [done|].
    eapply search_rows_ok; [|exact Er]. intros i l Hi. cbn. apply lookup_take_Some in Hi. tauto. }
  unfold TextBuffer.line. rewrite El.
  destruct (match EditorCore.search_query e with [] => false | _ => true end); [by eexists _, _|].
  pose proof (proj1 (Forall_lookup _ _) Ha _ _ El) as Hl. pose proof (len_ascii _ Hl).
  rewrite split_at_ascii by (done || lia). cbn [expect mbind outcome_bind].
  destruct (Str.find _ (take _ line)) as [n|] eqn:Ef; [|by eexists _, _].
  eexists _, _. split; [done|]. split; [|done]. apply ok_cursor; [done|].
  exists line. cbn. split; [done|]. apply find_Some in Ef as (a & b & Eab & <-).
  apply (f_equal Str.len) in Eab. rewrite !str_len_app, (len_ascii (take _ _)), length_take in Eab by (by apply Forall_take).
  lia.
Qed.

(** *** Keys *)
Lemma typed_ok k ch : key_ok k → EditorCore.typed k = Some ch → (ch < 128)%N.
Proof. destruct k; cbn; intros H [= <-]; (done || lia). Qed.

Lemma ok_fields b p d m u v e :
  text_ok b p → Forall snap_ok u → Forall snap_ok v →
  EditorCore.buffer e = b → EditorCore.cursor e = p → EditorCore.dirty e = d → EditorCore.mode e = m →
  EditorCore.undo_stack e = u → EditorCore.redo_stack e = v → state_ok e.
Proof. intros Ht Hu Hv <- <- _ _ <- <-. by split. Qed.

Lemma insert_mode_ok k e :
  state_ok e → key_ok k →
  ∃ o e', EditorCore.handle_insert_mode k e = Return (o, e') ∧ state_ok e'.
Proof.
  intros Hok Hk.
  pose proof (ok_save e Hok) as Hs. set (es := EditorCore.save_undo_snapshot e) in *.
  assert (∀ ch, (ch < 128)%N → ∃ o e', EditorCore.insert_char_in_insert_mode ch e = Return (o, e') ∧ state_ok e')
    as Htype.
  { intros ch Hch. unfold EditorCore.insert_char_in_insert_mode. fold es. cbn zeta.
    destruct (insert_char_ok _ _ (ok_text _ Hs) ch Hch) as (b' & -> & Hb). cbn.
    eexists _, _. split; [done|]. destruct Hs as [_ Hu Hv]. by split. }
  destruct k; cbn [EditorCore.handle_insert_mode EditorCore.typed];
    try (by apply Htype; (exact Hk || lia)); try (by eexists _, _).
  - cbn zeta. fold es. destruct (insert_newline_ok _ _ (ok_text _ Hs)) as (b' & -> & Hb). cbn.
    eexists _, _. split; [done|]. destruct Hs as [_ Hu Hv]. by split.
  - cbn zeta. fold es. destruct (backspace_ok _ _ (ok_text _ Hs)) as (p' & b' & -> & Hb). cbn.
    destruct Hs as [_ Hu Hv]. destruct p' as [p'|]; eexists _, _; (split; [done|]); by split.
  - eexists _, _. split; [done|]. destruct Hok as [[Ha (line & El & Hc)] Hu Hv].
    apply lookup_lt_Some in El. cbn zeta.
    destruct (0 <? _); (eapply ok_clamp; [exact Ha|exact El|exact Hu|exact Hv|done| |done|done]); cbn;
      [done|apply position_eta].
Qed.

Lemma normal_mode_ok k e :
  state_ok e → ∃ o e', EditorCore.handle_normal_mode k e = Return (o, e') ∧ state_ok e'.
Proof.
  intros Hok. pose proof (ok_moves e Hok) as (Hl & Hr & Hu & Hd).
  pose proof (ok_save e Hok) as Hs. set (es := EditorCore.save_undo_snapshot e) in *.
  destruct k; cbn [EditorCore.handle_normal_mode]; try (by eexists _, _);
    try (eexists _, _; split; [done|]; by apply (ok_other e)).
  - (* A *) eexists _, _. split; [done|]. cbn. destruct Hok as [[Ha (line & El & Hc)] Hu' Hv].
    unfold TextBuffer.line_length. rewrite El. cbn.
    destruct (Nat.ltb_spec (Position.col (EditorCore.cursor e)) (Str.len line)); split; cbn; try done.
    + split; [done|]. exists line. cbn. by split.
    + split; [done|]. exists line. cbn. by split.
  - (* X *) fold es. cbn zeta. destruct (delete_char_ok _ _ (ok_text _ Hs)) as (ok & b' & -> & Hb). cbn.
    destruct Hs as [_ Hu' Hv]. destruct ok; eexists _, _; (split; [done|]); by split.
  - (* D *) fold es. cbn zeta. unfold TextBuffer.delete_line.
    pose proof Hs as [[Ha (line & El & Hc)] Hu' Hv]. apply lookup_lt_Some in El as Hrow.
    rewrite (proj2 (Nat.leb_gt _ _)) by done.
    destruct (Nat.ltb_spec 1 (length (TextBuffer.lines (EditorCore.buffer es)))) as [Hmany|Hone]; cbn;
      eexists _, _; (split; [done|]); unfold TextBuffer.line_count; cbn.
    + destruct (Nat.leb_spec (length (delete (Position.row (EditorCore.cursor es))
        (TextBuffer.lines (EditorCore.buffer es)))) (Position.row (EditorCore.cursor es))) as [Hge|Hlt];
        (eapply (ok_clamp (TextBuffer.mk (delete (Position.row (EditorCore.cursor es))
           (TextBuffer.lines (EditorCore.buffer es)))));
         [apply Forall_delete, Ha| |exact Hu'|exact Hv|done| |done|done]; cbn;
         [|(done || apply position_eta)]);
        rewrite length_delete in * by (by eexists); lia.
    + rewrite length_insert, (proj2 (Nat.leb_gt _ _)) by done.
      eapply (ok_clamp (TextBuffer.mk (<[Position.row (EditorCore.cursor es) := []]>
        (TextBuffer.lines (EditorCore.buffer es))))); [apply Forall_insert; [exact Ha|constructor]| |exact Hu'|exact Hv|done| |done|done]; cbn.
      * by rewrite length_insert.
      * apply position_eta.
  - (* U *) pose proof (ok_undo_step e Hok). destruct (EditorCore.undo e) as [ok e']. by eexists _, _.
  - (* N *) destruct (find_next_ok e Hok) as (ok & e' & -> & He' & _). cbn. by eexists _, _.
  - (* CtrlR *) pose proof (ok_redo_step e Hok). destruct (EditorCore.redo e) as [ok e']. by eexists _, _.
Qed.

Lemma apply_key_ok k e :
  state_ok e → key_ok k → ∃ o e', EditorCore.apply_key k e = Return (o, e') ∧ state_ok e'.
Proof.
  intros Hok Hk. unfold EditorCore.apply_key. destruct (EditorCore.mode e).
  - by apply normal_mode_ok.
  - by apply insert_mode_ok.
  - destruct (EditorCore.handle_command_mode k e) as [o e'] eqn:E. eexists _, _. split; [done|].
    destruct k; cbn in E; injection E as <- <-; try done; try (by apply (ok_other e)).
    destruct (EditorCore.execute_command e); try done; by apply (ok_other e).
  - destruct k; cbn; try (by eexists _, _); try (eexists _, _; split; [done|]; by apply (ok_other e)).
    destruct (find_next_ok e Hok) as (ok & e' & -> & He' & _). cbn. eexists _, _. split; [done|].
    by apply (ok_other e').
Qed.

(** Typing a sequence of keys, with the outcomes. *)
Definition type_key (s : list CoreOutcome.t * EditorCore.t) (k : EditorKey.t)
    : outcome (list CoreOutcome.t * EditorCore.t) :=
  '(o, e) ← EditorCore.apply_key k s.2; Return (s.1 ++ [o], e).

Lemma load_ok content e : ascii content → state_ok (EditorCore.load_content content e).
Proof.
  intros Ha. split; cbn; [|constructor..].
  assert (∀ acc s, ascii acc → ascii s → Forall ascii (Str.lines_from acc s) ∧
            (acc ≠ [] ∨ s ≠ [] → Str.lines_from acc s ≠ [])) as Hlines.
  { intros acc s. revert acc. induction s as [|c s IH]; intros acc Hacc Hs; cbn.
    - destruct acc; [split; [constructor|intros [|]; done]|]. split; [|done].
      apply Forall_singleton. by apply Forall_reverse.
    - apply Forall_cons in Hs as [Hc Hs]. destruct (c =? 10)%N.
      + split; [|done]. constructor; [|by apply IH; [constructor|]].
        unfold Str.strip_cr. rewrite reverse_involutive.
        destruct acc as [|x acc']; [done|]. inversion_clear Hacc as [|?? Hx Hacc'].
        assert (ascii (reverse (x :: acc'))) by (apply Forall_reverse; by constructor).
        assert (ascii (reverse acc')) by (by apply Forall_reverse).
        destruct (decide (x = 13%N)) as [->|Hne]; [done|].
        replace (match x with 13%N => _ | _ => _ end) with (reverse (x :: acc')); [done|].
        destruct x as [|[[[[]|[]|]|[[]|[]|]|]|[[[]|[]|]|[[]|[]|]|]|]]; done.
      + destruct (IH (c :: acc)) as [H1 H2]; [by constructor|done|]. split; [done|].
        intros _. apply H2. by left. }
  unfold TextBuffer.from_string. destruct content as [|c s]; cbn -[Str.lines].
  - split; [repeat constructor|]. exists []. by split.
  - destruct (Hlines [] (c :: s)) as [H1 H2]; [constructor|done|]. unfold Str.lines.
    split; [done|]. destruct (Str.lines_from [] (c :: s)) as [|l ls]; [by destruct H2; [right|]|].
    exists l. split; [done|]. cbn. lia.
Qed.

(** Editing ASCII text never panics and the cursor never leaves the text.  After loading
    any ASCII text, any sequence of keys whose characters are ASCII, in whatever modes they
    meet, runs to its end: no index is out of range or inside a character, and in the final
    state the cursor is on an existing line at most at its end, as are the cursors of all
    states kept for undo and redo. *)
Theorem ascii_editing_never_panics (content : Str.t) (keys : list EditorKey.t) (e0 : EditorCore.t) :
  ascii content → Forall key_ok keys →
  ∃ outcomes e, fold_outcome type_key keys ([], EditorCore.load_content content e0) = Return (outcomes, e) ∧
    inside (TextBuffer.lines (EditorCore.buffer e)) (EditorCore.cursor e) ∧
    Forall (λ s, inside (TextBuffer.lines (BufferSnapshot.buffer s)) (BufferSnapshot.cursor s))
      (EditorCore.undo_stack e ++ EditorCore.redo_stack e).
Proof.
  intros Hc Hk.
  destruct (fold_outcome_returns (λ s, state_ok s.2) type_key keys ([], EditorCore.load_content content e0))
    as ([os e] & E & [[_ Hin] Hu Hv]).
  - by apply load_ok.
  - intros [os e] k Hkin He. rewrite Forall_forall in Hk.
    destruct (apply_key_ok k e He (Hk k Hkin)) as (o & e' & E & He'). unfold type_key. cbn [snd fst].
    rewrite E. by eexists.
  - exists os, e. split; [done|]. split; [done|]. apply Forall_app.
    split; (eapply Forall_impl; [eassumption|]); by intros s [_ ?].
Qed.

Definition word : list EditorKey.t :=
  [EditorKey.I; EditorKey.Char 72; EditorKey.I; EditorKey.Enter; EditorKey.A; EditorKey.Escape;
   EditorKey.D; EditorKey.U; EditorKey.Slash; EditorKey.Char 72; EditorKey.Enter; EditorKey.X].
Lemma ascii_editing_never_panics_witness :
  ∃ outcomes e, fold_outcome type_key word ([], EditorCore.load_content (Str.of_string "ab") EditorCore.new)
    = Return (outcomes, e) ∧ inside (TextBuffer.lines (EditorCore.buffer e)) (EditorCore.cursor e).
Proof.
  destruct (ascii_editing_never_panics (Str.of_string "ab") word EditorCore.new) as (os & e & E & H & _).
  - repeat constructor.
  - repeat constructor.
  - exists os, e. split; [exact E|exact H].
Defined.

(** A character of two bytes makes the next key panic.  Typing an accented letter advances
    the column by one while the line grows by two bytes; the column is then inside the
    character, and inserting the next one panics. *)
Theorem multibyte_character_panics :
  fold_outcome type_key [EditorKey.I; EditorKey.Char 233; EditorKey.Char 97] ([], EditorCore.new) = Panic.
Proof. reflexivity. Qed.
End EditorSafety.

(** ** Unsaved changes *)
Module SavedSpec.
(** What a user of the editor does: keys, loading a file, reporting that the text was saved. *)
Inductive action := Press (k : EditorKey.t) | Load (content : Str.t) | Saved.
(** The editor and the text that was last loaded or saved. *)
Definition act (s : TextBuffer.t * EditorCore.t) (a : action) : outcome (TextBuffer.t * EditorCore.t) :=
  match a with
  | Press k => '(_, e) ← EditorCore.apply_key k s.2; Return (s.1, e)
  | Load c => let e := EditorCore.load_content c s.2 in Return (EditorCore.buffer e, e)
  | Saved => Return (EditorCore.buffer s.2, EditorCore.mark_saved s.2)
  end.

(** A step either leaves the text alone, with its mark, or marks it. *)
Definition tracked (e e' : EditorCore.t) : Prop :=
  EditorCore.dirty e' = true ∨
  (EditorCore.buffer e' = EditorCore.buffer e ∧ EditorCore.dirty e' = EditorCore.dirty e).

Lemma tracked_refl e e' :
  EditorCore.buffer e' = EditorCore.buffer e → EditorCore.dirty e' = EditorCore.dirty e → tracked e e'.
Proof. by right. Qed.

Lemma clamp_keeps e :
  EditorCore.buffer (EditorCore.clamp_cursor e) = EditorCore.buffer e ∧
  EditorCore.dirty (EditorCore.clamp_cursor e) = EditorCore.dirty e.
Proof. unfold EditorCore.clamp_cursor. by destruct (_ <? _). Qed.

Lemma find_next_keeps e ok e' :
  EditorCore.find_next e = Return (ok, e') →
  EditorCore.buffer e' = EditorCore.buffer e ∧ EditorCore.dirty e' = EditorCore.dirty e.
Proof.
  unfold EditorCore.find_next.
  destruct (match EditorCore.search_query e with [] => _ | q => _ end) as [query e1] eqn:E1.
  assert (EditorCore.buffer e1 = EditorCore.buffer e ∧ EditorCore.dirty e1 = EditorCore.dirty e) as [Eb Ed]
    by (destruct (EditorCore.search_query e); injection E1 as <- <-; done).
  rewrite <- Eb, <- Ed. clear E1.
  destruct query as [[|q0 q]|]; [by intros [= <- <-]| |by intros [= <- <-]].
  intros (f & _ & E)%bind_Return. destruct f; [by injection E as <- <-|].
  destruct (EditorCore.search_rows _ _ _); [by injection E as <- <-|].
  destruct (match EditorCore.search_query e1 with [] => _ | _ => _ end); [by injection E as <- <-|].
  destruct (TextBuffer.line _ _); [|by injection E as <- <-].
  apply bind_Return in E as ([h t] & _ & E). destruct (Str.find _ h); by injection E as <- <-.
Qed.

Lemma moves_keep e e' :
  e' ∈ [EditorCore.move_cursor_left e; EditorCore.move_cursor_right e;
        EditorCore.move_cursor_up e; EditorCore.move_cursor_down e] → tracked e e'.
Proof.
  intros Hin. right. unfold EditorCore.move_cursor_left, EditorCore.move_cursor_right,
    EditorCore.move_cursor_up, EditorCore.move_cursor_down in Hin.
  rewrite !elem_of_cons, elem_of_nil in Hin.
  destruct Hin as [->|[->|[->|[->|[]]]]]; destruct (_ <? _); try done;
    (split; [etrans; [apply clamp_keeps|done]..]).
Qed.

(** An edit that reports no change makes none. *)
Lemma refused_edits_keep p b b' :
  (∀ ch, TextBuffer.insert_char p ch b = Return (false, b') → b' = b) ∧
  (TextBuffer.insert_newline p b = Return (false, b') → b' = b) ∧
  (TextBuffer.delete_char p b = Return (false, b') → b' = b) ∧
  (TextBuffer.delete_line (Position.row p) b = (false, b') → b' = b) ∧
  (TextBuffer.backspace p b = Return (None, b') → b' = b).
Proof.
  unfold TextBuffer.insert_char, TextBuffer.insert_newline, TextBuffer.delete_char,
    TextBuffer.delete_line, TextBuffer.backspace. split_and!.
  - intros ch. destruct (_ !! _) as [l|]; [|by intros [= <-]]. destruct (_ <? _); [by intros [= <-]|].
    by intros (? & _ & [=])%bind_Return.
  - destruct (_ !! _) as [l|]; [|by intros [= <-]]. destruct (_ <? _); [by intros [= <-]|].
    by intros ([] & _ & [=])%bind_Return.
  - destruct (_ !! _) as [l|]; [|by intros [= <-]]. destruct (_ <=? _); [by intros [= <-]|].
    by intros (? & _ & [=])%bind_Return.
  - destruct (_ <=? _); [by intros [= <-]|]. by destruct (_ <? _).
  - destruct (_ <? _); [intros (l & _ & E)%bind_Return; by apply bind_Return in E as (? & _ & [=])|].
    destruct (_ <? _); [|by intros [= <-]].
    intros (l & _ & E)%bind_Return. by apply bind_Return in E as (? & _ & [=]).
Qed.

Ltac refused e b :=
  destruct (refused_edits_keep (EditorCore.cursor e) (EditorCore.buffer e) b) as (? & ? & ? & ? & ?); eauto.

(** The shape of every edit: a snapshot, then a buffer operation. *)
Lemma edit_tracked e b (ok : bool) e' :
  (ok = false → b = EditorCore.buffer e) →
  EditorCore.buffer e' = b →
  EditorCore.dirty e' = (if ok then true else EditorCore.dirty e) → tracked e e'.
Proof. intros Hf Eb Ed. destruct ok; [by left|]. right. split; [by rewrite Eb, Hf|done]. Qed.

Lemma normal_mode_tracked k e o e' :
  EditorCore.handle_normal_mode k e = Return (o, e') → tracked e e'.
Proof.
  destruct (EditorSafety.save_keeps e) as (Sb & Sc & Sd & _).
  destruct k; cbn [EditorCore.handle_normal_mode];
    try (intros [= <- <-]; by apply tracked_refl);
    try (intros [= <- <-]; apply moves_keep; set_solver).
  - intros [= <- <-]. destruct (_ <? _); by apply tracked_refl.
  - cbn zeta. rewrite Sb, Sc. intros ([ok b] & E & E')%bind_Return. apply (edit_tracked e b ok).
    + intros ->. refused e b.
    + destruct ok; by injection E' as <- <-.
    + destruct ok; injection E' as <- <-; [done|exact Sd].
  - cbn zeta. rewrite Sb, Sc. destruct (TextBuffer.delete_line _ _) as [ok b] eqn:E. intros E'.
    destruct ok; [left|right]; injection E' as <- <-.
    + rewrite (proj2 (clamp_keeps _)). by destruct (_ <=? _).
    + split; [refused e b|exact Sd].
  - unfold EditorCore.undo. destruct (EditorCore.pop _) as [[s r]|]; intros [= <- <-]; [by left|by right].
  - intros ([ok e1] & E & [= <- <-])%bind_Return. right. by eapply find_next_keeps.
  - unfold EditorCore.redo. destruct (EditorCore.pop _) as [[s r]|]; intros [= <- <-]; [by left|by right].
Qed.

Lemma insert_mode_tracked k e o e' :
  EditorCore.handle_insert_mode k e = Return (o, e') → tracked e e'.
Proof.
  destruct (EditorSafety.save_keeps e) as (Sb & Sc & Sd & _).
  assert (∀ ch, EditorCore.insert_char_in_insert_mode ch e = Return (o, e') → tracked e e') as Htype.
  { intros ch. unfold EditorCore.insert_char_in_insert_mode. cbn zeta. rewrite Sb, Sc.
    intros ([ok b] & E & E')%bind_Return. apply (edit_tracked e b ok).
    - intros ->. refused e b.
    - destruct ok; by injection E' as <- <-.
    - destruct ok; injection E' as <- <-; [done|exact Sd]. }
  destruct k; cbn [EditorCore.handle_insert_mode EditorCore.typed]; try apply Htype;
    try (intros [= <- <-]; by apply tracked_refl).
  - cbn zeta. rewrite Sb, Sc. intros ([ok b] & E & E')%bind_Return. apply (edit_tracked e b ok).
    + intros ->. refused e b.
    + destruct ok; by injection E' as <- <-.
    + destruct ok; injection E' as <- <-; [done|exact Sd].
  - cbn zeta. rewrite Sb, Sc. intros ([[p|] b] & E & E')%bind_Return; injection E' as <- <-; [by left|].
    right. split; [refused e b|exact Sd].
  - intros [= <- <-]. right. rewrite (proj1 (clamp_keeps _)), (proj2 (clamp_keeps _)).
    by destruct (_ <? _).
Qed.

Lemma apply_key_tracked k e o e' : EditorCore.apply_key k e = Return (o, e') → tracked e e'.
Proof.
  unfold EditorCore.apply_key. destruct (EditorCore.mode e).
  - apply normal_mode_tracked.
  - apply insert_mode_tracked.
  - intros [= E]. destruct k; cbn in E; injection E as <- <-; try (by apply tracked_refl).
    destruct (EditorCore.execute_command e); by apply tracked_refl.
  - destruct k; cbn [EditorCore.handle_search_mode]; try (intros [= <- <-]; by apply tracked_refl).
    intros ([ok e1] & E & [= <- <-])%bind_Return. apply find_next_keeps in E as [Eb Ed]. by apply tracked_refl.
Qed.

(** An unforced exit is requested only for a text without the mark. *)
Lemma exit_is_clean k e e' :
  EditorCore.apply_key k e = Return (CoreOutcome.RequestExit false, e') → EditorCore.dirty e = false ∧ e' = e.
Proof.
  unfold EditorCore.apply_key. destruct (EditorCore.mode e) eqn:Em.
  - destruct k; cbn [EditorCore.handle_normal_mode]; try done.
    + by intros ([[] b] & _ & [=])%bind_Return.
    + cbn zeta. by destruct (TextBuffer.delete_line _ _) as [[] b].
    + by destruct (EditorCore.undo e) as [[] ?].
    + by intros ([[] b] & _ & [=])%bind_Return.
    + by destruct (EditorCore.redo e) as [[] ?].
  - destruct k; cbn [EditorCore.handle_insert_mode EditorCore.typed]; unfold EditorCore.insert_char_in_insert_mode;
      try done; try (by intros ([[] b] & _ & [=])%bind_Return).
  - intros [= E]. destruct k; cbn in E; try done. unfold EditorCore.execute_command in E.
    destruct (EditorCommand.parse_command _) as [force| | | |]; try done.
    + destruct (EditorCore.dirty e); destruct force; cbn in E; try done. by injection E as <-.
    + destruct (EditorCore.dirty e); try done. by injection E as <-.
  - destruct k; cbn [EditorCore.handle_search_mode]; try done.
    by intros ([[] b] & _ & [=])%bind_Return.
Qed.

(** Leaving the editor without force loses nothing.  Over any history of keys, loads and
    saves, a text without the mark for changes is exactly the text last loaded or saved; and a
    key that makes the editor ask for an unforced exit (:q or :wq) does so only in such a
    state, and leaves it alone. *)
Theorem unforced_exit_loses_nothing (acts : list action) (saved : TextBuffer.t) (e : EditorCore.t) :
  fold_outcome act acts (EditorCore.buffer EditorCore.new, EditorCore.new) = Return (saved, e) →
  (EditorCore.dirty e = false → EditorCore.buffer e = saved) ∧
  ∀ k e', EditorCore.apply_key k e = Return (CoreOutcome.RequestExit false, e') →
          EditorCore.buffer e' = saved.
Proof.
  intros E.
  assert (EditorCore.dirty e = false → EditorCore.buffer e = saved) as Hclean.
  { apply (fold_outcome_ind (λ s, EditorCore.dirty s.2 = false → EditorCore.buffer s.2 = s.1) act acts
      (EditorCore.buffer EditorCore.new, EditorCore.new) (saved, e)); [done| |exact E].
    intros [s1 e1] a s2 _ H1. destruct a as [k|c|]; cbn; [|by intros [= <-]..].
    intros ([o e2] & Ek & [= <-])%bind_Return. cbn in *.
    destruct (apply_key_tracked _ _ _ _ Ek) as [Hd|[Eb Ed]]; [congruence|]. rewrite Eb, Ed. exact H1. }
  split; [done|]. intros k e' Ek. apply exit_is_clean in Ek as [Hd ->]. by apply Hclean.
Qed.

Definition quit_keys : list action :=
  [Load (Str.of_string "one"); Press EditorKey.X; Saved; Press EditorKey.Colon; Press (EditorKey.Char 113)].
Definition quit_state : TextBuffer.t * EditorCore.t :=
  match fold_outcome act quit_keys (EditorCore.buffer EditorCore.new, EditorCore.new) with
  | Return s => s
  | _ => (TextBuffer.new, EditorCore.new)
  end.
Lemma unforced_exit_loses_nothing_witness :
  EditorCore.apply_key EditorKey.Enter quit_state.2 = Return (CoreOutcome.RequestExit false, quit_state.2) ∧
  EditorCore.buffer quit_state.2 = quit_state.1 ∧ quit_state.1 = TextBuffer.mk [Str.of_string "ne"].
Proof.
  assert (EditorCore.apply_key EditorKey.Enter quit_state.2
          = Return (CoreOutcome.RequestExit false, quit_state.2)) as Hk by (vm_compute; reflexivity).
  assert (fold_outcome act quit_keys (EditorCore.buffer EditorCore.new, EditorCore.new)
          = Return (quit_state.1, quit_state.2)) as Hs by (vm_compute; reflexivity).
  split; [exact Hk|]. split; [|vm_compute; reflexivity].
  exact (proj2 (unforced_exit_loses_nothing quit_keys quit_state.1 quit_state.2 Hs)
    EditorKey.Enter quit_state.2 Hk).
Defined.
End SavedSpec.

(** ** Undo and redo *)
Module UndoSpec.
Import EditorSafety.
Notation snap e := (BufferSnapshot.mk (EditorCore.buffer e) (EditorCore.cursor e)).

(** Redo takes an undo back exactly, but for the mark. *)
Lemma redo_undo e e1 :
  EditorCore.undo e = (true, e1) → EditorCore.redo e1 = (true, e <| EditorCore.dirty := true |>).
Proof.
  destruct e as [m b c d cb sq ls sm us rs]. unfold EditorCore.undo. cbn [EditorCore.undo_stack].
  destruct (EditorCore.pop us) as [[s r]|] eqn:E; [|done]. apply pop_Some in E. subst us.
  intros [= <-]. destruct s as [sb sc]. unfold EditorCore.redo.
  match goal with |- context [EditorCore.pop ?l] =>
    assert (EditorCore.pop l = Some (BufferSnapshot.mk b c, rs)) as -> by (by apply pop_Some) end.
  reflexivity.
Qed.

(** Saving a snapshot keeps the latest hundred. *)
Lemma save_stack e pre snaps :
  EditorCore.undo_stack e = pre ++ snaps → length snaps < 100 →
  ∃ pre', EditorCore.undo_stack (EditorCore.save_undo_snapshot e) = pre' ++ snaps ++ [snap e].
Proof.
  intros E Hl. unfold EditorCore.save_undo_snapshot. cbn zeta. rewrite E.
  destruct (Nat.ltb_spec 100 (length ((pre ++ snaps) ++ [snap e]))) as [Hgt|]; cbn.
  - destruct pre as [|x pre]; [|exists pre; by rewrite <- app_assoc].
    exfalso. rewrite !length_app in Hgt. cbn in Hgt. lia.
  - exists pre. by rewrite <- app_assoc.
Qed.

Definition types (k : EditorKey.t) : Prop := is_Some (EditorCore.typed k) ∧ key_ok k.

Lemma type_one k e pre snaps :
  state_ok e → EditorCore.mode e = EditorMode.Insert → types k →
  EditorCore.undo_stack e = pre ++ snaps → length snaps < 100 →
  ∃ e' pre', EditorCore.apply_key k e = Return (CoreOutcome.Changed, e') ∧ state_ok e' ∧
    EditorCore.mode e' = EditorMode.Insert ∧ EditorCore.undo_stack e' = pre' ++ snaps ++ [snap e].
Proof.
  intros Hok Hm [[ch Hch] Hk] Hu Hl. unfold EditorCore.apply_key. rewrite Hm.
  assert (EditorCore.handle_insert_mode k e = EditorCore.insert_char_in_insert_mode ch e) as ->
    by (destruct k; cbn in Hch; try done; by injection Hch as <-).
  pose proof (ok_save e Hok) as Hs. destruct (save_stack e pre snaps Hu Hl) as [pre' Hst].
  destruct (save_keeps e) as (_ & _ & _ & Sm).
  unfold EditorCore.insert_char_in_insert_mode. cbn zeta.
  destruct (insert_char_ok _ _ (ok_text _ Hs) ch (typed_ok k ch Hk Hch)) as (b' & -> & Hb). cbn.
  eexists _, pre'. split; [done|]. destruct Hs as [_ Hu' Hv'].
  split_and!; [by split|cbn; congruence|done].
Qed.

Lemma type_many ks e pre snaps :
  state_ok e → EditorCore.mode e = EditorMode.Insert → Forall types ks →
  EditorCore.undo_stack e = pre ++ snaps → length snaps + length ks ≤ 100 →
  ∃ os e' pre' snaps', fold_outcome type_key ks ([], e) = Return (os, e') ∧ state_ok e' ∧
    EditorCore.mode e' = EditorMode.Insert ∧ EditorCore.undo_stack e' = pre' ++ snaps ++ snaps' ∧
    length snaps' = length ks ∧ (ks ≠ [] → head snaps' = Some (snap e)).
Proof.
  generalize (@nil CoreOutcome.t) as os0. revert e pre snaps.
  induction ks as [|k ks IH]; intros e pre snaps os0 Hok Hm Hks Hu Hl; cbn in Hl.
  - exists os0, e, pre, []. rewrite app_nil_r. by split_and!.
  - apply Forall_cons in Hks as [Hk Hks].
    destruct (type_one k e pre snaps) as (e1 & pre1 & E1 & Hok1 & Hm1 & Hu1); [done..|lia|].
    cbn [fold_outcome].
    assert (type_key (os0, e) k = Return (os0 ++ [CoreOutcome.Changed], e1)) as ->
      by (unfold type_key; cbn [fst snd]; by rewrite E1).
    cbn [mbind outcome_bind].
    destruct (IH e1 pre1 (snaps ++ [snap e]) (os0 ++ [CoreOutcome.Changed]))
      as (os & e' & pre' & snaps' & E' & Hok' & Hm' & Hu' & Hl' & _); [done..|rewrite length_app; cbn; lia|].
    exists os, e', pre', (snap e :: snaps'). split_and!; [done..| |cbn; lia|done].
    rewrite Hu', <- !app_assoc. done.
Qed.

(** Pressing [u] or [Ctrl-R] in normal mode. *)
Lemma press_undo e os b e' :
  EditorCore.mode e = EditorMode.Normal → EditorCore.undo e = (b, e') →
  ∃ o, type_key (os, e) EditorKey.U = Return (os ++ [o], e').
Proof.
  intros Hm E. unfold type_key, EditorCore.apply_key. cbn. rewrite Hm. cbn. rewrite E. by eexists.
Qed.
Lemma press_redo e os b e' :
  EditorCore.mode e = EditorMode.Normal → EditorCore.redo e = (b, e') →
  ∃ o, type_key (os, e) EditorKey.CtrlR = Return (os ++ [o], e').
Proof.
  intros Hm E. unfold type_key, EditorCore.apply_key. cbn. rewrite Hm. cbn. rewrite E. by eexists.
Qed.

Lemma undo_many n e os pre snaps s0 :
  EditorCore.mode e = EditorMode.Normal → EditorCore.undo_stack e = pre ++ snaps → length snaps = n →
  head (snaps ++ [snap e]) = Some s0 →
  ∃ os1 os2 e1 e2,
    fold_outcome type_key (replicate n EditorKey.U) (os, e) = Return (os1, e1) ∧
    EditorCore.buffer e1 = BufferSnapshot.buffer s0 ∧ EditorCore.cursor e1 = BufferSnapshot.cursor s0 ∧
    EditorCore.mode e1 = EditorMode.Normal ∧
    fold_outcome type_key (replicate n EditorKey.CtrlR) (os1, e1) = Return (os2, e2) ∧
    e2 = e <| EditorCore.dirty := match n with O => EditorCore.dirty e | _ => true end |>.
Proof.
  revert e os snaps. induction n as [|n IH]; intros e os snaps Hm Hu Hl Hh.
  - destruct snaps; [|done]. cbn in Hh. injection Hh as <-. exists os, os, e, e. split_and!; try done. by destruct e.
  - destruct snaps as [|x snaps] using rev_ind; [done|]. clear IHsnaps.
    rewrite length_app in Hl. cbn in Hl.
    assert (EditorCore.undo e = (true, e <| EditorCore.undo_stack := pre ++ snaps |>
       <| EditorCore.redo_stack ::= λ l, l ++ [snap e] |> <| EditorCore.buffer := BufferSnapshot.buffer x |>
       <| EditorCore.cursor := BufferSnapshot.cursor x |> <| EditorCore.dirty := true |>)) as Eu.
    { unfold EditorCore.undo. rewrite (proj2 (pop_Some _ x (pre ++ snaps))); [done|]. by rewrite Hu, app_assoc. }
    match type of Eu with _ = (_, ?m) => set (em := m) in * end.
    destruct (press_undo e os true em Hm Eu) as [o Eo]. pose proof (redo_undo e em Eu) as Er.
    destruct (IH em (os ++ [o]) snaps) as (os1 & os2 & e1 & e2 & E1 & Hb & Hc & Hm1 & E2 & He2);
      [done|done|lia| |].
    { rewrite <- app_assoc in Hh. unfold em. cbn. destruct x. destruct snaps; exact Hh. }
    rewrite (replicate_S_end n EditorKey.CtrlR). cbn [replicate fold_outcome].
    rewrite Eo. cbn [mbind outcome_bind].
    assert (em <| EditorCore.dirty := match n with O => EditorCore.dirty em | _ => true end |> = em) as Hem
      by (unfold em; by destruct n).
    rewrite Hem in He2. subst e2.
    destruct (press_redo em os2 true _ Hm Er) as [o' Eo'].
    exists os1, (os2 ++ [o']), e1, (e <| EditorCore.dirty := true |>). split_and!; try done.
    rewrite fold_outcome_app, E2. cbn [mbind outcome_bind fold_outcome]. by rewrite Eo'.
Qed.

(** Undo takes back what was typed, and redo brings it back.  In insert mode on ASCII text,
    type up to a hundred characters, leave insert mode, and press [u] once per character: the
    text and the cursor are those before the typing, whatever was in the undo history.
    Pressing [Ctrl-R] as often restores the whole state before the first [u], but for the mark
    for changes, which is set. *)
Theorem undo_takes_typing_back (e : EditorCore.t) (ks : list EditorKey.t) :
  state_ok e → EditorCore.mode e = EditorMode.Insert → Forall types ks →
  1 ≤ length ks ≤ 100 →
  ∃ os1 os2 os3 e1 e2,
    fold_outcome type_key (ks ++ [EditorKey.Escape]) ([], e) = Return (os1, e1) ∧
    fold_outcome type_key (replicate (length ks) EditorKey.U) (os1, e1) = Return (os2, e2) ∧
    EditorCore.buffer e2 = EditorCore.buffer e ∧ EditorCore.cursor e2 = EditorCore.cursor e ∧
    fold_outcome type_key (replicate (length ks) EditorKey.CtrlR) (os2, e2)
    = Return (os3, e1 <| EditorCore.dirty := true |>).
Proof.
  intros Hok Hm Hks Hl.
  destruct (type_many ks e (EditorCore.undo_stack e) []) as (os & e' & pre & snaps & E & _ & Hm' & Hu & Hlen & Hh);
    [done..|by rewrite app_nil_r|cbn; lia|].
  assert (∃ o e1, type_key (os, e') EditorKey.Escape = Return (os ++ [o], e1) ∧
            EditorCore.mode e1 = EditorMode.Normal ∧ EditorCore.undo_stack e1 = pre ++ snaps)
    as (o & e1 & E1 & Hm1 & Hu1).
  { unfold type_key, EditorCore.apply_key. cbn [snd fst]. rewrite Hm'. cbn. eexists _, _. split; [done|].
    unfold EditorCore.clamp_cursor. destruct (0 <? _); destruct (_ <? _); done. }
  destruct (undo_many (length ks) e1 (os ++ [o]) pre snaps (snap e)) as (os1 & os2 & e2 & e3 & E2 & Hb & Hc & _ & E3 & ->);
    [done..| |].
  { destruct ks; [cbn in Hl; lia|]. specialize (Hh ltac:(done)). by destruct snaps. }
  exists (os ++ [o]), os1, os2, e1, e2. rewrite fold_outcome_app, E. cbn [mbind outcome_bind fold_outcome].
  rewrite E1. split_and!; [done..|]. rewrite E3. destruct (length ks); [lia|done].
Qed.

Definition hi : list EditorKey.t := [EditorKey.H; EditorKey.I; EditorKey.Char 33].
Definition insert_state : EditorCore.t :=
  EditorCore.load_content (Str.of_string "ab") EditorCore.new <| EditorCore.mode := EditorMode.Insert |>.
Lemma insert_state_ok : state_ok insert_state.
Proof. split; [|constructor..]. split; [repeat constructor|]. exists (Str.of_string "ab"). split; [done|cbn; lia]. Qed.
Lemma undo_takes_typing_back_witness :
  ∃ os1 e1 os2 e2,
    fold_outcome type_key (hi ++ [EditorKey.Escape]) ([], insert_state) = Return (os1, e1) ∧
    fold_outcome type_key (replicate 3 EditorKey.U) (os1, e1) = Return (os2, e2) ∧
    EditorCore.buffer e2 = TextBuffer.mk [Str.of_string "ab"].
Proof.
  destruct (undo_takes_typing_back insert_state hi) as (os1 & os2 & os3 & e1 & e2 & E1 & E2 & Hb & _).
  - exact insert_state_ok.
  - reflexivity.
  - repeat constructor; eexists; reflexivity.
  - cbn. lia.
  - exists os1, e1, os2, e2. split; [exact E1|]. split; [exact E2|]. exact Hb.
Defined.

(** A deletion that finds nothing to delete still drops the redo history.  After an undo,
    pressing [x] on an empty line changes nothing, but the undone change can no longer be
    redone. *)
Theorem void_delete_drops_redo :
  let keys := [EditorKey.I; EditorKey.Char 97; EditorKey.Escape; EditorKey.U] in
  match fold_outcome type_key keys ([], EditorCore.new) with
  | Return (os1, e1) =>
      (EditorCore.redo e1).1 = true ∧
      match fold_outcome type_key [EditorKey.X] (os1, e1) with
      | Return (_, e2) => EditorCore.buffer e2 = EditorCore.buffer e1 ∧ (EditorCore.redo e2).1 = false
      | _ => False
      end
  | _ => False
  end.
Proof. vm_compute. by repeat split. Qed.
End UndoSpec.

(** ** Search *)
Module SearchSpec.
Import StrSpec.

(** The text [q] stands at a position. *)
Definition occurs_at (q : Str.t) (ls : list Str.t) (p : Position.t) : Prop :=
  ∃ a b, ls !! Position.row p = Some (a ++ q ++ b) ∧ Str.len a = Position.col p.
(** What a search looks for. *)
Definition query (e : EditorCore.t) : option Str.t :=
  match EditorCore.search_query e with [] => EditorCore.last_search e | q => Some q end.

Lemma search_forward_sound q ls row col all f :
  drop row all = ls → EditorCore.search_forward q ls row col = Return f →
  match f with
  | Some p => occurs_at q all p
  | None => (∀ r line, all !! r = Some line → row < r → Str.find q line = None ∨ line = []) ∧
            (∀ a b, all !! row = Some (a ++ b) → Str.len a = col → b = [] ∨ Str.find q b = None)
  end.
Proof.
  revert row col. induction ls as [|line ls IH]; intros row col Hd; cbn.
  - intros [= <-]. assert (length all ≤ row) as Hlen.
    { apply (f_equal length) in Hd. rewrite length_drop in Hd. cbn in Hd. lia. }
    split; [intros r l Hr%lookup_lt_Some; lia|]. intros a b Hab%lookup_lt_Some. lia.
  - assert (all !! row = Some line) as El by (rewrite <- (Nat.add_0_r row), <- lookup_drop, Hd; done).
    assert (drop (S row) all = ls) as Hd' by (rewrite <- Nat.add_1_r, <- drop_drop, Hd; done).
    intros (found & Efound & E)%bind_Return. destruct found as [n|].
    + injection E as <-. destruct (col <? Str.len line); [|done].
      apply bind_Return in Efound as ([a rest] & Esp & [= Ef]).
      destruct (Str.split_at col line) as [[a0 b0]|] eqn:Es; [|done]. injection Esp as -> ->.
      apply split_at_Some in Es as [-> Ela]. apply find_Some in Ef as (x & y & -> & <-).
      exists (a ++ x), y. cbn. rewrite El, str_len_app, <- app_assoc. split; [done|lia].
    + apply IH in E; [|done]. destruct f as [p|]; [done|]. destruct E as [Hlater Hnext]. split.
      * intros r l Hl Hr. destruct (decide (r = S row)) as [->|Hne]; [|apply (Hlater r l Hl); lia].
        destruct (Hnext [] l) as [->|Hn]; [done|done|by right|by left].
      * intros a b Hab Hca. rewrite El in Hab. injection Hab as ->. rewrite str_len_app in Efound.
        destruct b as [|c b]; [by left|]. right. pose proof (len_utf8_pos c). cbn [Str.len] in Efound.
        rewrite (proj2 (Nat.ltb_lt _ _)) in Efound by lia. rewrite <- Hca, split_at_app in Efound.
        cbn in Efound. by injection Efound.
Qed.

Lemma search_rows_sound q ls row all :
  (∀ i line, ls !! i = Some line → all !! (row + i) = Some line) →
  match EditorCore.search_rows q ls row with
  | Some p => occurs_at q all p
  | None => ∀ i line, ls !! i = Some line → Str.find q line = None
  end.
Proof.
  revert row. induction ls as [|line ls IH]; intros row Hall; cbn; [done|].
  destruct (Str.find q line) as [n|] eqn:Ef.
  - apply find_Some in Ef as (a & b & -> & <-). exists a, b. cbn.
    rewrite <- (Nat.add_0_r row). split; [by apply Hall|done].
  - specialize (IH (S row)). destruct (EditorCore.search_rows q ls (S row)) as [p|].
    + apply IH. intros i l Hi. rewrite Nat.add_succ_comm. by apply (Hall (S i)).
    + intros [|i] l; cbn; [by intros [= <-]|]. apply IH. clear -Hall. intros i l Hi.
      rewrite Nat.add_succ_comm. by apply (Hall (S i)).
Qed.

(** What a search reports is true.  When a search stops on a match, the text searched for
    stands at the new cursor, and the buffer is as before.  When a new search reports that
    there is no match, there is none on any other line and none from the cursor to the end of
    its line.  (A match to the left of the cursor on its own line is not looked for.) *)
Theorem search_reports_are_true (e e' : EditorCore.t) (ok : bool) :
  EditorCore.find_next e = Return (ok, e') →
  EditorCore.buffer e' = EditorCore.buffer e ∧
  if ok then ∃ q, query e = Some q ∧ occurs_at q (TextBuffer.lines (EditorCore.buffer e)) (EditorCore.cursor e')
  else ∀ q, EditorCore.search_query e = q → q ≠ [] → ∀ p,
         occurs_at q (TextBuffer.lines (EditorCore.buffer e)) p →
         Position.row p = Position.row (EditorCore.cursor e) ∧
         (∀ a b, TextBuffer.lines (EditorCore.buffer e) !! Position.row p = Some (a ++ b) →
            Str.len a = Position.col (EditorCore.cursor e) → ∀ x y, b ≠ x ++ q ++ y).
Proof.
  intros E. split; [by eapply SavedSpec.find_next_keeps|]. revert E.
  unfold EditorCore.find_next, query.
  destruct (match EditorCore.search_query e with [] => (EditorCore.last_search e, e) | _ => _ end)
    as [qo e1] eqn:E1.
  assert (EditorCore.buffer e1 = EditorCore.buffer e ∧ EditorCore.cursor e1 = EditorCore.cursor e ∧
    EditorCore.search_query e1 = EditorCore.search_query e ∧
    qo = match EditorCore.search_query e with [] => EditorCore.last_search e | q => Some q end)
    as (Eb & Ec & Eq & ->) by (destruct (EditorCore.search_query e) eqn:Eqq; injection E1 as <- <-; by rewrite ?Eqq).
  rewrite Eb, Ec, Eq. clear E1. set (ls := TextBuffer.lines (EditorCore.buffer e)).
  set (q0 := match EditorCore.search_query e with [] => _ | q => Some q end).
  intros E. destruct q0 as [[|c q]|] eqn:Eq0;
    [injection E as <- <-; intros q <-; unfold q0 in Eq0; by destruct (EditorCore.search_query e)| |
     injection E as <- <-; intros q <-; unfold q0 in Eq0; by destruct (EditorCore.search_query e)].
  apply bind_Return in E as (f & Ef & E).
  apply (search_forward_sound _ _ _ _ ls) in Ef; [|done].
  destruct f as [p|]; [injection E as <- <-; by exists (c :: q)|].
  pose proof (search_rows_sound (c :: q) (take (Position.row (EditorCore.cursor e)) ls) 0 ls) as Hr.
  destruct (EditorCore.search_rows (c :: q) _ 0) as [p|].
  { injection E as <- <-. exists (c :: q). split; [done|]. apply Hr. intros i l Hi.
    apply lookup_take_Some in Hi. tauto. }
  specialize (Hr ltac:(intros i l Hi; apply lookup_take_Some in Hi; tauto)).
  destruct (EditorCore.search_query e) as [|c' q'] eqn:Esq.
  - (* a repeated search *)
    unfold TextBuffer.line in E. fold ls in E.
    destruct (ls !! Position.row (EditorCore.cursor e)) as [line|] eqn:El; [|injection E as <- <-; by intros q1 <-].
    apply bind_Return in E as ([h t] & Esp & E).
    destruct (Str.split_at _ line) as [[h0 t0]|] eqn:Es; [|done]. injection Esp as -> ->.
    apply split_at_Some in Es as [-> _].
    destruct (Str.find (c :: q) h) as [n|] eqn:En; injection E as <- <-; [|by intros q1 <-].
    exists (c :: q). split; [done|]. apply find_Some in En as (a & b & -> & <-).
    exists a, (b ++ t). cbn. rewrite El, <- !app_assoc. done.
  - injection E as <- <-. unfold q0 in Eq0. injection Eq0 as -> ->. intros q1 <- _ p (a & b & Hp & Hpc).
    destruct Ef as [Hlater Hhere].
    assert (Str.find (c :: q) (a ++ (c :: q) ++ b) ≠ None) as Hfound.
    { intros Hn. by apply (find_None _ _ Hn a b). }
    destruct (lt_eq_lt_dec (Position.row p) (Position.row (EditorCore.cursor e))) as [[Hlt|Heq]|Hgt].
    + exfalso. apply Hfound, (Hr (Position.row p)). by apply lookup_take_Some.
    + split; [done|]. intros a1 b1 Hab Hca x y ->. rewrite Heq in Hab.
      destruct (Hhere a1 (x ++ (c :: q) ++ y) Hab Hca) as [Hnil|Hn]; [by destruct x|].
      by apply (find_None _ _ Hn x y).
    + exfalso. destruct (Hlater _ _ Hp Hgt) as [Hn|Hn]; [done|by destruct a].
Qed.

Definition searching : EditorCore.t :=
  EditorCore.load_content (Str.of_string "say hello") EditorCore.new
    <| EditorCore.search_query := Str.of_string "hell" |>.
Lemma search_reports_are_true_witness :
  ∃ e', EditorCore.find_next searching = Return (true, e') ∧
        EditorCore.cursor e' = Position.new 0 4 ∧
        ∃ q, query searching = Some q ∧
             occurs_at q (TextBuffer.lines (EditorCore.buffer searching)) (EditorCore.cursor e').
Proof.
  destruct (EditorCore.find_next searching) as [[[] e']| |] eqn:E; [|vm_compute in E; discriminate E..].
  exists e'. split; [reflexivity|]. split; [vm_compute in E; injection E as <-; reflexivity|].
  exact (proj2 (search_reports_are_true searching e' true E)).
Defined.

(** A new search misses a match to the left of the cursor.  With the cursor at the end of
    the only line, searching for a word that stands earlier on that line reports that the
    pattern was not found: after wrapping around, the part of the current line before the
    cursor is examined only when a search is repeated. *)
Theorem search_misses_match_before_cursor :
  let e := searching <| EditorCore.cursor := Position.new 0 9 |> in
  occurs_at (Str.of_string "hell") (TextBuffer.lines (EditorCore.buffer e)) (Position.new 0 4) ∧
  (λ r : bool * EditorCore.t, r.1) <$> EditorCore.find_next e = Return false.
Proof.
  split; [|vm_compute; reflexivity]. exists (Str.of_string "say "), (Str.of_string "o"). by split.
Qed.
End SearchSpec.

(** ** Round trips of the buffer *)
Module BufferSpec.
Import StrSpec.

(** A line as the editor produces it: no line feed inside, no carriage return at its end. *)
Definition plain (s : Str.t) : Prop := 10%N ∉ s ∧ last s ≠ Some 13%N.

Lemma strip_cr_plain s : last s ≠ Some 13%N → Str.strip_cr s = s.
Proof.
  intros Hl. unfold Str.strip_cr. destruct (reverse s) as [|c r] eqn:E; [done|].
  assert (c ≠ 13%N) as Hc.
  { intros ->. apply Hl. rewrite <- (reverse_involutive s), E, reverse_cons, last_snoc. done. }
  destruct c as [|[[[[]|[]|]|[[]|[]|]|]|[[[]|[]|]|[[]|[]|]|]|]]; done.
Qed.

Lemma lines_from_plain s acc rest :
  10%N ∉ s → Str.lines_from acc (s ++ rest) = Str.lines_from (reverse s ++ acc) rest.
Proof.
  revert acc. induction s as [|c s IH]; intros acc Hs; [done|]. apply not_elem_of_cons in Hs as [Hc Hs].
  cbn [app Str.lines_from]. destruct (N.eqb_spec c 10) as [->|_]; [done|]. rewrite IH by done.
  by rewrite reverse_cons, <- app_assoc.
Qed.

Lemma lines_join ls :
  Forall plain ls → last ls ≠ Some [] → Str.lines (Str.join ls) = ls.
Proof.
  unfold Str.lines. induction 1 as [|s ls [Hs Hcr] Hls IH]; intros Hlast; [done|].
  destruct ls as [|t ls].
  - cbn [Str.join]. rewrite <- (app_nil_r s), lines_from_plain, !app_nil_r by done. cbn [Str.lines_from].
    destruct (reverse s) as [|c r] eqn:E.
    + apply (f_equal reverse) in E. rewrite reverse_involutive in E. subst s. done.
    + by rewrite <- E, reverse_involutive.
  - change (Str.join (s :: t :: ls)) with (s ++ 10%N :: Str.join (t :: ls)).
    rewrite lines_from_plain by done. cbn [Str.lines_from N.eqb Pos.eqb].
    rewrite app_nil_r, reverse_involutive, strip_cr_plain, IH by done. done.
Qed.

(** A saved text loads back as it was.  For a buffer whose lines have no line feed inside
    and no carriage return at their end, and whose last line is not empty (or which is the
    empty buffer), turning it into the file's text and loading that text gives the same
    buffer. *)
Theorem saved_text_loads_back (b : TextBuffer.t) :
  Forall plain (TextBuffer.lines b) →
  TextBuffer.lines b = [[]] ∨ (TextBuffer.lines b ≠ [] ∧ last (TextBuffer.lines b) ≠ Some []) →
  TextBuffer.from_string (TextBuffer.as_string b) = b.
Proof.
  destruct b as [ls]. cbn [TextBuffer.lines]. intros Hp [->|[Hne Hlast]]; [done|].
  unfold TextBuffer.from_string, TextBuffer.as_string. cbn [TextBuffer.lines].
  pose proof (lines_join ls Hp Hlast) as E. f_equal.
  destruct (Str.join ls) as [|c s]; [|done]. unfold Str.lines in E. cbn in E. congruence.
Qed.

Definition two_lines : TextBuffer.t := TextBuffer.mk [Str.of_string "ab"; []; Str.of_string "c"].
Lemma saved_text_loads_back_witness :
  TextBuffer.from_string (TextBuffer.as_string two_lines) = two_lines.
Proof.
  apply (saved_text_loads_back two_lines).
  - repeat constructor; try discriminate; vm_compute; intros H; repeat (inversion H; clear H; subst; rename H2 into H); done.
  - right. split; discriminate.
Defined.

(** Saving loses a trailing empty line.  A buffer that ends with an empty line, as it does
    after pressing Enter at the end of the text, is saved as a text that loads back without
    that line. *)
Theorem trailing_empty_line_is_lost :
  let b := TextBuffer.mk [Str.of_string "ab"; []] in
  TextBuffer.from_string (TextBuffer.as_string b) = TextBuffer.mk [Str.of_string "ab"] ∧
  TextBuffer.insert_newline (Position.new 0 2) (TextBuffer.mk [Str.of_string "ab"]) = Return (true, b).
Proof. split; reflexivity. Qed.

(** Backspace takes back what was inserted.  Inserting any character, or a line break, at a
    character boundary of an existing line and then pressing backspace behind it restores the
    buffer and the position. *)
Theorem backspace_takes_insertion_back (b : TextBuffer.t) (row : nat) (x y : Str.t) (ch : N) :
  TextBuffer.lines b !! row = Some (x ++ y) →
  let p := Position.new row (Str.len x) in
  (∃ b', TextBuffer.insert_char p ch b = Return (true, b') ∧
         (Str.len_utf8 ch = 1 →
          TextBuffer.backspace (Position.new row (Str.len x + 1)) b' = Return (Some p, b))) ∧
  (∃ b', TextBuffer.insert_newline p b = Return (true, b') ∧
         TextBuffer.backspace (Position.new (S row) 0) b' = Return (Some p, b)).
Proof.
  intros El p. destruct b as [ls]. cbn [TextBuffer.lines] in El. apply lookup_lt_Some in El as Hr. split.
  - unfold TextBuffer.insert_char, Str.insert, p. cbn [TextBuffer.lines Position.row Position.col]. rewrite El, str_len_app.
    rewrite (proj2 (Nat.ltb_ge _ _)), split_at_app by lia. cbn. eexists. split; [done|]. intros Hch.
    unfold TextBuffer.backspace. cbn [TextBuffer.lines Position.row Position.col].
    rewrite (proj2 (Nat.ltb_lt _ _)) by lia. cbn. rewrite list_lookup_insert_eq by done. cbn.
    unfold Str.remove. rewrite Nat.add_sub, split_at_app. cbn. do 3 f_equal.
    unfold update_field. cbn. rewrite list_insert_insert_eq, list_insert_id by done. done.
  - unfold TextBuffer.insert_newline, p. cbn [TextBuffer.lines Position.row Position.col]. rewrite El, str_len_app.
    rewrite (proj2 (Nat.ltb_ge _ _)), split_at_app by lia. cbn. eexists. split; [done|].
    unfold TextBuffer.backspace. cbn [TextBuffer.lines Position.row Position.col].
    rewrite (proj2 (Nat.ltb_lt 0 (S row))) by lia. rewrite Nat.ltb_irrefl.
    set (l1 := <[row := x]> ls). assert (length l1 = length ls) as Hl1 by apply length_insert.
    cbn. unfold vec_insert.
    assert (length (take (row + 1) l1) = S row) as Ht by (rewrite length_take; lia).
    rewrite list_lookup_middle by done. cbn. fold l1.
    assert (delete (S row) (take (row + 1) l1 ++ y :: drop (row + 1) l1) = l1) as ->
      by (rewrite <- Ht at 1; rewrite delete_middle; apply take_drop).
    rewrite Nat.sub_0_r. unfold l1. rewrite list_lookup_insert_eq by done. cbn.
    rewrite list_insert_insert_eq, list_insert_id by done. done.
Qed.

Lemma backspace_takes_insertion_back_witness :
  ∃ b', TextBuffer.insert_char (Position.new 0 1) 120 two_lines = Return (true, b') ∧
        TextBuffer.backspace (Position.new 0 2) b' = Return (Some (Position.new 0 1), two_lines).
Proof.
  destruct (backspace_takes_insertion_back two_lines 0 (Str.of_string "a") (Str.of_string "b") 120 eq_refl)
    as [(b' & E & H) _].
  exists b'. split; [exact E|exact (H eq_refl)].
Defined.
End BufferSpec.
