(* ===== verification/Network.v ===== *)
(** * Network service and remote IPC ([services_network], [remote_ipc])

    The frame codec of the advanced protocols and the registry that validates frames, the
    packet queues behind a policy and a packet budget, and the client and server of remote
    capability calls.  The policy and the handlers are trait objects of the source and are
    records of functions; the budget, the transport, the remote handler and the JSON codec
    are classes. *)

From S2P Require Import Prelude CoreTypes Debug Resources Identity Ipc Policy Queue AuditLogs.
From S2P Require Import Kernel Executable Pipeline.
Open Scope string_scope.
Open Scope list_scope.
Open Scope N_scope.

(** ** Frames *)

Module NetworkInterfaceId.
(* services_network/src/lib.rs:34-36 NetworkInterfaceId *)
Record t := mk { uuid : Uuid }.
#[global] Instance eq_dec : EqDecision t.
Proof. solve_decision. Defined.
#[global] Program Instance countable : Countable t := inj_countable' uuid mk _.
Next Obligation. by intros []. Qed.
End NetworkInterfaceId.

(** A port is a [u16]. *)
Module Endpoint.
(* services_network/src/lib.rs:50-64 Endpoint *)
Record t := new { address : string; port : N }.
End Endpoint.

Module PacketProtocol.
(* services_network/src/lib.rs:66-73 PacketProtocol *)
Inductive t := Tcp | Udp | Custom.
End PacketProtocol.

Module AdvancedProtocol.
(* services_network/src/lib.rs:75-82 AdvancedProtocol *)
Inductive t := ReliableDatagram | StreamMux | SecureChannel.
#[global] Instance eq_dec : EqDecision t.
Proof. solve_decision. Defined.
(** [protocol as u8]: the position of the constructor. *)
Definition tag (p : t) : N :=
  match p with ReliableDatagram => 0 | StreamMux => 1 | SecureChannel => 2 end.
(** The [match bytes[5]] of the decoder. *)
(* services_network/src/lib.rs:161-170 ProtocolFrame::decode *)
Definition of_tag (b : N) : option t :=
  match b with
  | 0 => Some ReliableDatagram
  | 1 => Some StreamMux
  | 2 => Some SecureChannel
  | _ => None
  end.
#[global] Program Instance countable : Countable t := inj_countable tag of_tag _.
Next Obligation. by intros []. Qed.
End AdvancedProtocol.

Module ProtocolError.
(* services_network/src/lib.rs:84-95 ProtocolError *)
Inductive t :=
| UnsupportedProtocol (p : AdvancedProtocol.t)
| InvalidFrame (msg : string)
| ValidationFailed (msg : string).
End ProtocolError.

Module ProtocolHeader.
(* services_network/src/lib.rs:97-103 ProtocolHeader *)
Record t := mk { protocol : AdvancedProtocol.t; session_id : N; sequence : N }.
End ProtocolHeader.

Module ProtocolFrame.
(* services_network/src/lib.rs:105-110 ProtocolFrame *)
Record t := mk { header : ProtocolHeader.t; payload : list N }.

(** The bytes of [PGNP]. *)
(* services_network/src/lib.rs:113-113 ProtocolFrame::MAGIC *)
Definition MAGIC : list N := [80; 71; 78; 80].
(* services_network/src/lib.rs:114-114 ProtocolFrame::VERSION *)
Definition VERSION : N := 1.
(* services_network/src/lib.rs:115-115 ProtocolFrame::HEADER_LEN *)
Definition HEADER_LEN : N := 4 + 1 + 1 + 2 + 8 + 8 + 4.

(* services_network/src/lib.rs:117-131 ProtocolFrame::new *)
Definition new (protocol : AdvancedProtocol.t) (session_id sequence : N) (payload : list N) : t :=
  mk (ProtocolHeader.mk protocol session_id sequence) payload.

(** [to_le 4] keeps the low 32 bits, as the cast [len() as u32] does. *)
(* services_network/src/lib.rs:133-144 ProtocolFrame::encode *)
Definition encode (f : t) : list N :=
  MAGIC ++ [VERSION] ++ [AdvancedProtocol.tag (ProtocolHeader.protocol (header f))]
  ++ to_le 2 0
  ++ to_le 8 (ProtocolHeader.session_id (header f))
  ++ to_le 8 (ProtocolHeader.sequence (header f))
  ++ to_le 4 (len (payload f))
  ++ payload f.

(* services_network/src/lib.rs:146-193 ProtocolFrame::decode *)
Definition decode (bytes : list N) : outcome (result t ProtocolError.t) :=
  if len bytes <? HEADER_LEN then Return (Err (ProtocolError.InvalidFrame "frame too short")) else
  magic ← read_bytes 4 0 bytes;
  if negb (bool_decide (magic = MAGIC))
  then Return (Err (ProtocolError.InvalidFrame "bad magic")) else
  version ← index bytes 4;
  if negb (version =? VERSION)
  then Return (Err (ProtocolError.InvalidFrame "unsupported version")) else
  tag ← index bytes 5;
  match AdvancedProtocol.of_tag tag with
  | None => Return (Err (ProtocolError.InvalidFrame ("unknown protocol tag " +:+ pretty tag)))
  | Some protocol =>
      session_id ← read_le 8 8 bytes;
      sequence ← read_le 8 16 bytes;
      payload_len ← read_le 4 24 bytes;
      expected_len ← add_u64 HEADER_LEN payload_len;
      if negb (len bytes =? expected_len)
      then Return (Err (ProtocolError.InvalidFrame "payload length mismatch"))
      else Return (Ok (new protocol session_id sequence (drop 28 bytes)))
  end.
End ProtocolFrame.

(** The trait [ProtocolHandler]: an object of it is its two methods. *)
Module ProtocolHandler.
(* services_network/src/lib.rs:196-200 ProtocolHandler *)
Record t := mk {
  protocol : AdvancedProtocol.t;
  validate : ProtocolFrame.t → result unit ProtocolError.t
}.
(* services_network/src/lib.rs:206-219 ReliableDatagramHandler *)
Definition reliable_datagram : t :=
  mk AdvancedProtocol.ReliableDatagram (λ frame,
    if 1200 <? len (ProtocolFrame.payload frame)
    then Err (ProtocolError.ValidationFailed "reliable datagram payload exceeds 1200 bytes")
    else Ok tt).
(* services_network/src/lib.rs:221-234 StreamMuxHandler *)
Definition stream_mux : t :=
  mk AdvancedProtocol.StreamMux (λ frame,
    if ProtocolHeader.session_id (ProtocolFrame.header frame) =? 0
    then Err (ProtocolError.ValidationFailed "stream mux session id must be non-zero")
    else Ok tt).
(* services_network/src/lib.rs:236-249 SecureChannelHandler *)
Definition secure_channel : t :=
  mk AdvancedProtocol.SecureChannel (λ frame,
    if len (ProtocolFrame.payload frame) <? 16
    then Err (ProtocolError.ValidationFailed "secure channel payload must be at least 16 bytes")
    else Ok tt).
End ProtocolHandler.

Module ProtocolRegistry.
(* services_network/src/lib.rs:251-254 ProtocolRegistry *)
Record t := mk { handlers : gmap AdvancedProtocol.t ProtocolHandler.t }.
(* services_network/src/lib.rs:263-267 ProtocolRegistry::new *)
Definition new : t := mk ∅.
(* services_network/src/lib.rs:277-279 ProtocolRegistry::register *)
Definition register (handler : ProtocolHandler.t) (r : t) : t :=
  mk (<[ProtocolHandler.protocol handler := handler]> (handlers r)).
(* services_network/src/lib.rs:269-275 ProtocolRegistry::with_defaults *)
Definition with_defaults : t :=
  register ProtocolHandler.secure_channel
    (register ProtocolHandler.stream_mux (register ProtocolHandler.reliable_datagram new)).
(* services_network/src/lib.rs:281-287 ProtocolRegistry::validate *)
Definition validate (frame : ProtocolFrame.t) (r : t) : result unit ProtocolError.t :=
  let p := ProtocolHeader.protocol (ProtocolFrame.header frame) in
  match handlers r !! p with
  | None => Err (ProtocolError.UnsupportedProtocol p)
  | Some handler => ProtocolHandler.validate handler frame
  end.
(* services_network/src/lib.rs:289-292 ProtocolRegistry::encode_frame *)
Definition encode_frame (frame : ProtocolFrame.t) (r : t) : result (list N) ProtocolError.t :=
  match validate frame r with
  | Err e => Err e
  | Ok _ => Ok (ProtocolFrame.encode frame)
  end.
(* services_network/src/lib.rs:294-298 ProtocolRegistry::decode_frame *)
Definition decode_frame (bytes : list N) (r : t) : outcome (result ProtocolFrame.t ProtocolError.t) :=
  let? frame := ProtocolFrame.decode bytes in
  Return (match validate frame r with Err e => Err e | Ok _ => Ok frame end).
End ProtocolRegistry.

(** ** Packets *)

Module Packet.
(* services_network/src/lib.rs:301-308 Packet *)
Record t := mk {
  source : Endpoint.t;
  destination : Endpoint.t;
  protocol : PacketProtocol.t;
  payload : list N
}.
End Packet.

Module PacketDirection.
(* services_network/src/lib.rs:310-315 PacketDirection *)
Inductive t := Send | Receive.
End PacketDirection.

Module NetPacketOperation.
(* services_network/src/lib.rs:317-322 PacketOperation *)
Inductive t := Send | Receive.
End NetPacketOperation.

Module PacketContext.
(* services_network/src/lib.rs:324-331 PacketContext *)
Record t := mk {
  execution_id : ExecutionId.t;
  interface_id : NetworkInterfaceId.t;
  direction : PacketDirection.t;
  packet : Packet.t
}.
End PacketContext.

Module NetworkDecision.
(* services_network/src/lib.rs:333-338 NetworkDecision *)
Inductive t := Allow | Deny (reason : string).
End NetworkDecision.

(** The trait [NetworkPolicy]; its method takes [&self] and has no state to change. *)
Module NetworkPolicy.
(* services_network/src/lib.rs:340-343 NetworkPolicy *)
Record t := mk { evaluate : PacketContext.t → NetworkDecision.t }.
(* services_network/src/lib.rs:345-352 AllowAllPolicy *)
Definition allow_all : t := mk (λ _, NetworkDecision.Allow).
(* services_network/src/lib.rs:354-363 DenyAllPolicy *)
Definition deny_all : t := mk (λ _, NetworkDecision.Deny "All network traffic denied").
End NetworkPolicy.

(* services_network/src/lib.rs:365-372 PacketBudget *)
Class PacketBudget (B : Type) :=
  consume_packet : ExecutionId.t → NetPacketOperation.t → B → outcome (result unit KernelError.t * B).

(* services_network/src/lib.rs:374-386 PacketBudget for SimulatedKernel *)
#[global] Instance kernel_packet_budget `{HashOrder} `{UuidFormat} : PacketBudget Kernel.t :=
  λ eid operation k,
    let op :=
      match operation with
      | NetPacketOperation.Send => AuditLogs.PacketOperation.Send
      | NetPacketOperation.Receive => AuditLogs.PacketOperation.Receive
      end in
    Kernel.try_consume_packet eid op k.

Module NetworkError.
(* services_network/src/lib.rs:388-396 NetworkError *)
Inductive t := PolicyDenied (reason : string) | BudgetError (msg : string).
(* services_network/src/lib.rs:398-402 From<KernelError> for NetworkError *)
Definition from_kernel (e : KernelError.t) : t := BudgetError (display_kernel_error e).
End NetworkError.

Module NetworkService.
(* services_network/src/lib.rs:404-408 NetworkService *)
Record t := mk {
  policy : NetworkPolicy.t;
  queues : gmap NetworkInterfaceId.t (list Packet.t)
}.
#[global] Instance rebuild_t : Rebuild t := λ s, mk (policy s) (queues s).
(* services_network/src/lib.rs:411-416 NetworkService::new *)
Definition new (policy : NetworkPolicy.t) : t := mk policy ∅.

Section with_budget.
Context `{PacketBudget B}.

(** [self.policy.evaluate(&context)] and [budget.consume_packet(..)?], one after the
    other. *)
(* services_network/src/lib.rs:425-437 NetworkService::send_packet *)
Definition authorize (eid : ExecutionId.t) (i : NetworkInterfaceId.t) (d : PacketDirection.t)
    (op : NetPacketOperation.t) (packet : Packet.t) (s : t) (b : B)
    : outcome (result unit NetworkError.t * B) :=
  match NetworkPolicy.evaluate (policy s) (PacketContext.mk eid i d packet) with
  | NetworkDecision.Deny reason => Return (Err (NetworkError.PolicyDenied reason), b)
  | NetworkDecision.Allow =>
      '(r, b) ← consume_packet eid op b; Return (map_err NetworkError.from_kernel r, b)
  end.

(* services_network/src/lib.rs:418-444 NetworkService::send_packet *)
Definition send_packet (eid : ExecutionId.t) (i : NetworkInterfaceId.t) (packet : Packet.t)
    (sb : t * B) : outcome (result unit NetworkError.t * (t * B)) :=
  let '(s, b) := sb in
  '(r, b) ← authorize eid i PacketDirection.Send NetPacketOperation.Send packet s b;
  Return (match r with
          | Err e => (Err e, (s, b))
          | Ok _ => (Ok tt, (s <| queues := <[i := default [] (queues s !! i) ++ [packet]]> (queues s) |>, b))
          end).

(* services_network/src/lib.rs:446-477 NetworkService::receive_packet *)
Definition receive_packet (eid : ExecutionId.t) (i : NetworkInterfaceId.t) (sb : t * B)
    : outcome (result (option Packet.t) NetworkError.t * (t * B)) :=
  let '(s, b) := sb in
  match queues s !! i with
  | None | Some [] => Return (Ok None, (s, b))
  | Some (packet :: queue) =>
      let s := s <| queues := <[i := queue]> (queues s) |> in
      '(r, b) ← authorize eid i PacketDirection.Receive NetPacketOperation.Receive packet s b;
      Return (match r with Err e => Err e | Ok _ => Ok (Some packet) end, (s, b))
  end.
End with_budget.

(* services_network/src/lib.rs:479-481 NetworkService::queued_packets *)
Definition queued_packets (i : NetworkInterfaceId.t) (s : t) : N :=
  default 0 (len <$> queues s !! i).
End NetworkService.

(** ** Remote capability calls *)

(* remote_ipc/src/lib.rs:9-9 REMOTE_CALL_ACTION *)
Definition REMOTE_CALL_ACTION : string := "remote.capability.call".
(* remote_ipc/src/lib.rs:10-10 REMOTE_RESPONSE_ACTION *)
Definition REMOTE_RESPONSE_ACTION : string := "remote.capability.response".
(* remote_ipc/src/lib.rs:11-11 REMOTE_SCHEMA *)
Definition REMOTE_SCHEMA : SchemaVersion.t := SchemaVersion.new 1 0.

Module CapabilityAuthority.
(* remote_ipc/src/lib.rs:13-17 CapabilityAuthority *)
Record t := mk { caller : string; allowed_caps : list N }.
(* remote_ipc/src/lib.rs:19-23 CapabilityAuthority::allows *)
Definition allows (cap_id : N) (a : t) : bool := bool_decide (cap_id ∈ allowed_caps a).
End CapabilityAuthority.

Module RemoteCall.
(* remote_ipc/src/lib.rs:25-32 RemoteCall *)
Record t := mk {
  request_id : MessageId.t;
  cap_id : N;
  action : string;
  payload : list N;
  authority : CapabilityAuthority.t
}.
End RemoteCall.

Module RemoteResponse.
(* remote_ipc/src/lib.rs:34-38 RemoteResponse *)
Record t := mk { request_id : MessageId.t; result_ : result (list N) string }.
End RemoteResponse.

Module RemoteIpcError.
(* remote_ipc/src/lib.rs:40-47 RemoteIpcError *)
Inductive t := Unauthorized | Codec (msg : string).
End RemoteIpcError.

(* remote_ipc/src/lib.rs:49-51 RemoteHandler *)
Class RemoteHandler (H : Type) := handle : RemoteCall.t → H → result (list N) string * H.

(* remote_ipc/src/lib.rs:53-56 RemoteTransport *)
Class RemoteTransport (T : Type) := {
  send : MessageEnvelope.t → T → result unit RemoteIpcError.t * T;
  receive : T → result MessageEnvelope.t RemoteIpcError.t * T
}.

(** What one encoding draws: the identifier of the message and its destination. *)
Module DrawnEnvelope.
Record t := mk { message_id : MessageId.t; service_id : ServiceId.t }.
End DrawnEnvelope.

Section remote_codec.
Context `{JsonCodec RemoteCall.t} `{JsonCodec RemoteResponse.t}.

(* remote_ipc/src/lib.rs:134-143 encode_call *)
Definition encode_call (d : DrawnEnvelope.t) (call : RemoteCall.t)
    : result MessageEnvelope.t RemoteIpcError.t :=
  match MessagePayload.new call with
  | Err e => Err (RemoteIpcError.Codec e)
  | Ok payload =>
      Ok (MessageEnvelope.new (DrawnEnvelope.message_id d) (DrawnEnvelope.service_id d)
            REMOTE_CALL_ACTION REMOTE_SCHEMA payload)
  end.

(* remote_ipc/src/lib.rs:145-158 encode_response *)
Definition encode_response (d : DrawnEnvelope.t) (response : RemoteResponse.t)
    (correlation_id : MessageId.t) : result MessageEnvelope.t RemoteIpcError.t :=
  match MessagePayload.new response with
  | Err e => Err (RemoteIpcError.Codec e)
  | Ok payload =>
      Ok (MessageEnvelope.with_correlation correlation_id
            (MessageEnvelope.new (DrawnEnvelope.message_id d) (DrawnEnvelope.service_id d)
               REMOTE_RESPONSE_ACTION REMOTE_SCHEMA payload))
  end.

(* remote_ipc/src/lib.rs:160-168 decode_call *)
Definition decode_call (message : MessageEnvelope.t) : result RemoteCall.t RemoteIpcError.t :=
  if negb (bool_decide (MessageEnvelope.action message = REMOTE_CALL_ACTION))
  then Err (RemoteIpcError.Codec "unexpected action")
  else map_err RemoteIpcError.Codec (MessagePayload.deserialize (MessageEnvelope.payload message)).

(* remote_ipc/src/lib.rs:170-178 decode_response *)
Definition decode_response (message : MessageEnvelope.t)
    : result RemoteResponse.t RemoteIpcError.t :=
  if negb (bool_decide (MessageEnvelope.action message = REMOTE_RESPONSE_ACTION))
  then Err (RemoteIpcError.Codec "unexpected action")
  else map_err RemoteIpcError.Codec (MessagePayload.deserialize (MessageEnvelope.payload message)).
End remote_codec.

Module RemoteIpcServer.
Section with_handler.
Context `{JsonCodec RemoteCall.t} `{JsonCodec RemoteResponse.t} {S : Type} `{RemoteHandler S}.

(* remote_ipc/src/lib.rs:101-104 RemoteIpcServer *)
Record t := mk { handler : S; allowed_caps : gset N }.
#[global] Instance rebuild_t : Rebuild t := λ s, mk (handler s) (allowed_caps s).
(* remote_ipc/src/lib.rs:107-112 RemoteIpcServer::new *)
Definition new (handler : S) (allowed_caps : list N) : t := mk handler (list_to_set allowed_caps).

(* remote_ipc/src/lib.rs:114-131 RemoteIpcServer::handle_message *)
Definition handle_message (d : DrawnEnvelope.t) (message : MessageEnvelope.t) (s : t)
    : result MessageEnvelope.t RemoteIpcError.t * t :=
  match decode_call message with
  | Err e => (Err e, s)
  | Ok call =>
      if negb (bool_decide (RemoteCall.cap_id call ∈ allowed_caps s))
         || negb (CapabilityAuthority.allows (RemoteCall.cap_id call) (RemoteCall.authority call))
      then
        let response := RemoteResponse.mk (RemoteCall.request_id call) (Err "unauthorized") in
        (encode_response d response (MessageEnvelope.id message), s)
      else
        let request_id := RemoteCall.request_id call in
        let '(result, h) := handle call (handler s) in
        let response := RemoteResponse.mk request_id result in
        (encode_response d response (MessageEnvelope.id message), s <| handler := h |>)
  end.
End with_handler.
Arguments t : clear implicits.
End RemoteIpcServer.

Module RemoteIpcClient.
Section with_transport.
Context `{JsonCodec RemoteCall.t} `{JsonCodec RemoteResponse.t} {T : Type} `{RemoteTransport T}.

(* remote_ipc/src/lib.rs:58-61 RemoteIpcClient *)
Record t := new { transport : T; authority : CapabilityAuthority.t }.
#[global] Instance rebuild_t : Rebuild t := λ c, new (transport c) (authority c).

(** [request] is the [MessageId::new()] of the call. *)
(* remote_ipc/src/lib.rs:71-98 RemoteIpcClient::call *)
Definition call (request : MessageId.t) (d : DrawnEnvelope.t) (cap_id : N) (action : string)
    (payload : list N) (c : t) : result (list N) RemoteIpcError.t * t :=
  if negb (CapabilityAuthority.allows cap_id (authority c))
  then (Err RemoteIpcError.Unauthorized, c) else
  let call := RemoteCall.mk request cap_id action payload (authority c) in
  match encode_call d call with
  | Err e => (Err e, c)
  | Ok message =>
      let '(r, tr) := send message (transport c) in
      let c := c <| transport := tr |> in
      match r with
      | Err e => (Err e, c)
      | Ok _ =>
          let '(r, tr) := receive (transport c) in
          let c := c <| transport := tr |> in
          match r with
          | Err e => (Err e, c)
          | Ok reply =>
              match decode_response reply with
              | Err e => (Err e, c)
              | Ok response =>
                  if negb (bool_decide (RemoteResponse.request_id response
                                        = RemoteCall.request_id call))
                  then (Err (RemoteIpcError.Codec "request_id mismatch"), c)
                  else (map_err RemoteIpcError.Codec (RemoteResponse.result_ response), c)
              end
          end
      end
  end.
End with_transport.
Arguments t : clear implicits.
End RemoteIpcClient.
