(* ===== verification/NetworkProps.v ===== *)
(** * Properties of the network service and of remote IPC

    The frame decoder accepts exactly the encodings of frames and is total, a registry
    never sends what the other side would refuse, the packet queues are first-in first-out
    under any policy and budget, the packet budget of the kernel bounds the traffic, and a
    remote call over a loopback behaves as a guarded call of the handler.  System calls that
    travel as messages behave as calls of the kernel. *)

From S2P Require Import Prelude CoreTypes Debug Resources Identity Ipc Policy Queue AuditLogs.
From S2P Require Import Faults Sched Smp AddrSpace SyscallGate Kernel Executable KernelSpec.
From S2P Require Import KernelProps BudgetProps ExecProps Pipeline Network UserTask.
Open Scope string_scope.
Open Scope list_scope.
Open Scope N_scope.

(** ** Frames *)
Module FrameSpec.
Import ProtocolFrame.

(** The values that the machine types of a frame can hold. *)
Record frame_ok (f : t) : Prop := {
  fo_session : ProtocolHeader.session_id (header f) < 2 ^ 64;
  fo_sequence : ProtocolHeader.sequence (header f) < 2 ^ 64;
  fo_length : len (payload f) < 2 ^ 32;
  fo_bytes : Forall byte_ok (payload f)
}.

(** The layout of a frame; the two reserved bytes [r] are not looked at. *)
Definition frame_bytes (r : list N) (f : t) : list N :=
  MAGIC ++ [VERSION] ++ [AdvancedProtocol.tag (ProtocolHeader.protocol (header f))] ++ r
  ++ to_le 8 (ProtocolHeader.session_id (header f))
  ++ to_le 8 (ProtocolHeader.sequence (header f))
  ++ to_le 4 (len (payload f)) ++ payload f.

Lemma of_tag_tag p : AdvancedProtocol.of_tag (AdvancedProtocol.tag p) = Some p.
Proof. by destruct p. Qed.

Lemma of_tag_Some b p : AdvancedProtocol.of_tag b = Some p ↔ b = AdvancedProtocol.tag p.
Proof.
  split; [|intros ->; apply of_tag_tag].
  destruct b as [|[[]|[]|]]; simpl; intros E; by simplify_eq.
Qed.

(** The fields of a byte string that is long enough. *)
Definition fields (m : list N) (v t : N) (r s q p rest : list N) : list N :=
  m ++ [v] ++ [t] ++ r ++ s ++ q ++ p ++ rest.

Record field_lengths (m r s q p : list N) : Prop := {
  fl_m : length m = 4%nat; fl_r : length r = 2%nat; fl_s : length s = 8%nat;
  fl_q : length q = 8%nat; fl_p : length p = 4%nat
}.

Lemma split_fields bytes :
  HEADER_LEN ≤ len bytes →
  ∃ m v t r s q p rest, bytes = fields m v t r s q p rest ∧ field_lengths m r s q p.
Proof.
  unfold HEADER_LEN, len. intros Hl.
  destruct (split_prefix 4 bytes) as (m & l1 & -> & Hm); [lia|]. rewrite length_app in Hl.
  destruct l1 as [|v [|t l2]]; simpl in Hl; [lia..|].
  destruct (split_prefix 2 l2) as (r & l3 & -> & Hr); [lia|]. rewrite length_app in Hl.
  destruct (split_prefix 8 l3) as (s & l4 & -> & Hs); [lia|]. rewrite length_app in Hl.
  destruct (split_prefix 8 l4) as (q & l5 & -> & Hq); [lia|]. rewrite length_app in Hl.
  destruct (split_prefix 4 l5) as (p & rest & -> & Hp); [lia|].
  by exists m, v, t, r, s, q, p, rest.
Qed.

Lemma read_le_field n offset data pre l post :
  data = pre ++ l ++ post → length l = n → offset = len pre →
  read_le n offset data = Return (from_le l).
Proof. intros -> Hl Ho. by apply read_le_at. Qed.

(** Decoding by fields. *)
Lemma decode_fields m v t r s q p rest :
  field_lengths m r s q p → Forall byte_ok p →
  decode (fields m v t r s q p rest) = Return (
    if bool_decide (m = MAGIC) then
      if v =? VERSION then
        match AdvancedProtocol.of_tag t with
        | None => Err (ProtocolError.InvalidFrame ("unknown protocol tag " +:+ pretty t))
        | Some protocol =>
            if len rest =? from_le p then Ok (new protocol (from_le s) (from_le q) rest)
            else Err (ProtocolError.InvalidFrame "payload length mismatch")
        end
      else Err (ProtocolError.InvalidFrame "unsupported version")
    else Err (ProtocolError.InvalidFrame "bad magic")).
Proof.
  intros [Hm Hr Hs Hq Hp] Hb. pose proof (from_le_bound p Hb) as Hw. rewrite Hp in Hw.
  assert (len (fields m v t r s q p rest) = 28 + len rest) as Hl.
  { unfold fields, len. rewrite !length_app. simpl. lia. }
  unfold decode. rewrite Hl. unfold HEADER_LEN.
  destruct (N.ltb_spec (28 + len rest) (4 + 1 + 1 + 2 + 8 + 8 + 4)); [lia|].
  assert (read_bytes 4 0 (fields m v t r s q p rest) = Return m) as ->.
  { rewrite <- Hm. apply (read_bytes_at [] m). }
  simpl.
  case_bool_decide; simpl; [|done].
  assert (index (fields m v t r s q p rest) 4 = Return v) as ->.
  { unfold index, fields. rewrite lookup_app_r, Hm by (rewrite Hm; simpl; lia). done. }
  simpl. destruct (N.eqb_spec v VERSION); simpl; [|done].
  assert (index (fields m v t r s q p rest) 5 = Return t) as ->.
  { unfold index, fields. rewrite lookup_app_r, Hm by (rewrite Hm; simpl; lia). done. }
  simpl. destruct (AdvancedProtocol.of_tag t) as [pr|]; [|done].
  assert (∀ a b c : list N, len (a ++ b ++ c) = len a + len b + len c) as Ha
    by (intros; rewrite !len_app; lia).
  rewrite (read_le_field 8 8 _ (m ++ [v] ++ [t] ++ r) s (q ++ p ++ rest))
    by (done || (unfold fields; by rewrite <- !app_assoc) ||
        (rewrite !len_app; unfold len; rewrite Hm, Hr; done)). simpl.
  rewrite (read_le_field 8 16 _ (m ++ [v] ++ [t] ++ r ++ s) q (p ++ rest))
    by (done || (unfold fields; by rewrite <- !app_assoc) ||
        (rewrite !len_app; unfold len; rewrite Hm, Hr, Hs; done)). simpl.
  rewrite (read_le_field 4 24 _ (m ++ [v] ++ [t] ++ r ++ s ++ q) p rest)
    by (done || (unfold fields; by rewrite <- !app_assoc) ||
        (rewrite !len_app; unfold len; rewrite Hm, Hr, Hs, Hq; done)). simpl.
  unfold add_u64, checked_add, u64_max. rewrite (proj2 (N.leb_le _ _)) by lia. simpl.
  match goal with |- context [negb (?a =? ?b)] => destruct (N.eqb_spec a b) as [He|He] end;
    destruct (N.eqb_spec (len rest) (from_le p)); try lia; simpl; [|done].
  do 3 f_equal. unfold fields. rewrite !app_assoc. apply drop_app_length'.
  rewrite !length_app, Hm, Hr, Hs, Hq, Hp. done.
Qed.

(** The decoder returns on every input. *)
Lemma decode_total bytes : Forall byte_ok bytes → ∃ r, decode bytes = Return r.
Proof.
  intros Hb. destruct (N.lt_ge_cases (len bytes) HEADER_LEN) as [Hl|Hl].
  - eexists. unfold decode. by rewrite (proj2 (N.ltb_lt _ _) Hl).
  - destruct (split_fields bytes Hl) as (m & v & t & r & s & q & p & rest & -> & Hf).
    unfold fields in Hb. rewrite !Forall_app in Hb.
    eexists. apply decode_fields; [done|tauto].
Qed.

Lemma frame_bytes_fields r f :
  frame_bytes r f = fields MAGIC VERSION (AdvancedProtocol.tag (ProtocolHeader.protocol (header f))) r
    (to_le 8 (ProtocolHeader.session_id (header f))) (to_le 8 (ProtocolHeader.sequence (header f)))
    (to_le 4 (len (payload f))) (payload f).
Proof. done. Qed.

Lemma to_le_bytes n x : Forall byte_ok (to_le n x).
Proof.
  revert x. induction n as [|n IH]; intros x; simpl; [constructor|]. constructor; [|apply IH].
  unfold byte_ok. by apply N.mod_lt.
Qed.

Lemma decode_frame_bytes r f :
  frame_ok f → length r = 2%nat → decode (frame_bytes r f) = Return (Ok f).
Proof.
  intros [Hs Hq Hl Hb] Hr. rewrite frame_bytes_fields, decode_fields.
  - rewrite bool_decide_eq_true_2, N.eqb_refl, of_tag_tag by done.
    rewrite !from_le_to_le by done. rewrite N.eqb_refl. by destruct f as [[] ?].
  - split; rewrite ?to_le_length; done.
  - apply to_le_bytes.
Qed.

Lemma frame_bytes_of_decode bytes f :
  Forall byte_ok bytes → decode bytes = Return (Ok f) →
  frame_ok f ∧ ∃ r, length r = 2%nat ∧ bytes = frame_bytes r f.
Proof.
  intros Hb Hd. destruct (N.lt_ge_cases (len bytes) HEADER_LEN) as [Hl|Hl].
  { unfold decode in Hd. by rewrite (proj2 (N.ltb_lt _ _) Hl) in Hd. }
  destruct (split_fields bytes Hl) as (m & v & t & r & s & q & p & rest & -> & Hf).
  unfold fields in Hb. rewrite !Forall_app in Hb. destruct Hb as (Hbm & _ & _ & _ & Hbs & Hbq & Hbp & Hbr).
  rewrite decode_fields in Hd by done.
  case_bool_decide as Hm; [|done]. destruct (N.eqb_spec v VERSION) as [Hv|]; [|done].
  destruct (AdvancedProtocol.of_tag t) as [pr|] eqn:Ht; [|done]. apply of_tag_Some in Ht.
  destruct (N.eqb_spec (len rest) (from_le p)) as [Hlen|]; [|done]. injection Hd as <-.
  destruct Hf as [Fm Fr Fs Fq Fp].
  pose proof (from_le_bound s Hbs) as Bs. pose proof (from_le_bound q Hbq) as Bq.
  pose proof (from_le_bound p Hbp) as Bp. rewrite ?Fs, ?Fq, ?Fp in *.
  split; [by split; simpl; rewrite ?Hlen|].
  exists r. split; [done|]. unfold frame_bytes, fields, new. cbn [header payload ProtocolHeader.session_id ProtocolHeader.sequence ProtocolHeader.protocol]. subst.
  rewrite Hlen, (to_le_from_le 8 s), (to_le_from_le 8 q), (to_le_from_le 4 p) by done. done.
Qed.

(** C37: the decoder of network frames accepts exactly the encodings: on any byte string it
    returns (no slice index or sum panics), and it returns the frame [f] exactly when [f]
    fits its machine types and the bytes are the layout of [f], whatever the two reserved
    bytes hold; in particular decoding inverts encoding. *)
Theorem decode_accepts_exactly_frames bytes :
  Forall byte_ok bytes →
  returns (decode bytes) ∧
  (∀ f, decode bytes = Return (Ok f) ↔
     frame_ok f ∧ ∃ r, length r = 2%nat ∧ bytes = frame_bytes r f) ∧
  (∀ f, frame_ok f → decode (encode f) = Return (Ok f)).
Proof.
  intros Hb. split_and!.
  - by apply decode_total.
  - intros f. split; [by apply frame_bytes_of_decode|].
    intros (Hf & r & Hr & ->). by apply decode_frame_bytes.
  - intros f Hf. change (encode f) with (frame_bytes (to_le 2 0) f). by apply decode_frame_bytes.
Qed.

Definition small_frame : t := new AdvancedProtocol.StreamMux 7 9 [1; 2; 3].

Lemma decode_accepts_exactly_frames_witness :
  returns (decode (encode small_frame)) ∧
  frame_ok small_frame ∧ ∃ r, length r = 2%nat ∧ encode small_frame = frame_bytes r small_frame.
Proof.
  destruct (decode_accepts_exactly_frames (encode small_frame)) as (Hr & Hx & _).
  { vm_compute. repeat (constructor; [done|]). constructor. }
  split; [done|]. apply Hx. by vm_compute.
Defined.

(** A frame whose payload does not fit the 32-bit length field is encoded with a length
    that the decoder refuses. *)
Theorem oversized_frame_is_refused f :
  2 ^ 32 ≤ len (payload f) →
  decode (encode f) = Return (Err (ProtocolError.InvalidFrame "payload length mismatch")).
Proof.
  intros Hl. change (encode f) with (frame_bytes (to_le 2 0) f).
  rewrite frame_bytes_fields, decode_fields; [|by split; rewrite ?to_le_length|apply to_le_bytes].
  rewrite bool_decide_eq_true_2, N.eqb_refl, of_tag_tag by done.
  pose proof (from_le_bound _ (to_le_bytes 4 (len (payload f)))) as Hb. rewrite to_le_length in Hb.
  destruct (N.eqb_spec (len (payload f)) (from_le (to_le 4 (len (payload f))))) as [E|]; [|done].
  rewrite <- E in Hb. change (256 ^ N.of_nat 4) with (2 ^ 32) in Hb. lia.
Qed.

(** What a registry lets out, the same registry lets in: the receiving side decodes the
    bytes of [encode_frame] to the frame that was sent. *)
Theorem registry_round_trip reg f bytes :
  frame_ok f → ProtocolRegistry.encode_frame f reg = Ok bytes →
  ProtocolRegistry.decode_frame bytes reg = Return (Ok f).
Proof.
  unfold ProtocolRegistry.encode_frame, ProtocolRegistry.decode_frame. intros Hf.
  destruct (ProtocolRegistry.validate f reg) eqn:E; intros [= <-].
  change (encode f) with (frame_bytes (to_le 2 0) f). rewrite decode_frame_bytes by done.
  simpl. by rewrite E.
Qed.

(** The default registry accepts a frame exactly when its protocol's rule holds. *)
Theorem default_registry_accepts f :
  ProtocolRegistry.validate f ProtocolRegistry.with_defaults = Ok tt ↔
  match ProtocolHeader.protocol (header f) with
  | AdvancedProtocol.ReliableDatagram => len (payload f) ≤ 1200
  | AdvancedProtocol.StreamMux => ProtocolHeader.session_id (header f) ≠ 0
  | AdvancedProtocol.SecureChannel => 16 ≤ len (payload f)
  end.
Proof.
  unfold ProtocolRegistry.validate, ProtocolRegistry.with_defaults, ProtocolRegistry.register.
  simpl. destruct f as [[[] s q] p]; simpl.
  - rewrite !lookup_insert_ne, lookup_insert_eq by done. simpl.
    destruct (N.ltb_spec 1200 (len p)); split; (done || lia).
  - rewrite lookup_insert_ne, lookup_insert_eq by done. simpl.
    destruct (N.eqb_spec s 0); split; (done || lia).
  - rewrite lookup_insert_eq. simpl. destruct (N.ltb_spec (len p) 16); split; (done || lia).
Qed.
End FrameSpec.

(** ** Packet queues *)
Module NetworkSpec.
Import NetworkService.

(** A call on the service and what it answered. *)
Inductive call :=
| Send (eid : ExecutionId.t) (i : NetworkInterfaceId.t) (p : Packet.t)
| Receive (eid : ExecutionId.t) (i : NetworkInterfaceId.t).

Inductive event :=
| Sent (eid : ExecutionId.t) (i : NetworkInterfaceId.t) (p : Packet.t) (r : result unit NetworkError.t)
| Received (eid : ExecutionId.t) (i : NetworkInterfaceId.t)
    (r : result (option Packet.t) NetworkError.t).

Section service.
Context {B : Type} `{PacketBudget B}.

Definition step (c : call) (sb : t * B) : outcome (event * (t * B)) :=
  match c with
  | Send eid i p => '(r, sb) ← send_packet eid i p sb; Return (Sent eid i p r, sb)
  | Receive eid i => '(r, sb) ← receive_packet eid i sb; Return (Received eid i r, sb)
  end.

(** The calls one after the other, with the events they produced. *)
Fixpoint serve (cs : list call) (sb : t * B) : outcome (list event * (t * B)) :=
  match cs with
  | [] => Return ([], sb)
  | c :: cs =>
      '(e, sb) ← step c sb;
      '(es, sb) ← serve cs sb;
      Return (e :: es, sb)
  end.
End service.

(** The packets accepted on an interface, the packets handed out on it, and whether a
    receive failed on it. *)
Definition accepted_by (i : NetworkInterfaceId.t) (e : event) : list Packet.t :=
  match e with Sent _ j p (Ok _) => if bool_decide (i = j) then [p] else [] | _ => [] end.
Definition delivered_by (i : NetworkInterfaceId.t) (e : event) : list Packet.t :=
  match e with Received _ j (Ok (Some p)) => if bool_decide (i = j) then [p] else [] | _ => [] end.
Definition failed_receive (i : NetworkInterfaceId.t) (e : event) : bool :=
  match e with Received _ j (Err _) => bool_decide (i = j) | _ => false end.

Definition accepted i (es : list event) : list Packet.t := es ≫= accepted_by i.
Definition delivered i (es : list event) : list Packet.t := es ≫= delivered_by i.

Definition queue (i : NetworkInterfaceId.t) (s : t) : list Packet.t := default [] (queues s !! i).

(** The policy allowed what an event passed on. *)
Definition complies (pol : NetworkPolicy.t) (e : event) : Prop :=
  match e with
  | Sent eid i p (Ok _) =>
      NetworkPolicy.evaluate pol (PacketContext.mk eid i PacketDirection.Send p) = NetworkDecision.Allow
  | Received eid i (Ok (Some p)) =>
      NetworkPolicy.evaluate pol (PacketContext.mk eid i PacketDirection.Receive p) = NetworkDecision.Allow
  | _ => True
  end.

(** One event as a transition of the abstract queue: accepted packets go in at the back;
    [gone] is what left at the front, and it was delivered unless the receive failed. *)
Definition moves (i : NetworkInterfaceId.t) (e : event) (q q' : list Packet.t) : Prop :=
  ∃ gone, q ++ accepted_by i e = gone ++ q' ∧ delivered_by i e `sublist_of` gone ∧
    (failed_receive i e = false → gone = delivered_by i e).

Section service_proofs.
Context {B : Type} `{PacketBudget B}.

Lemma authorize_Ok eid i d op p s b u b' :
  authorize eid i d op p s b = Return (Ok u, b') →
  NetworkPolicy.evaluate (policy s) (PacketContext.mk eid i d p) = NetworkDecision.Allow.
Proof. unfold authorize. by destruct (NetworkPolicy.evaluate _ _). Qed.

Lemma step_moves c s b e s' b' :
  step c (s, b) = Return (e, (s', b')) →
  policy s' = policy s ∧ complies (policy s) e ∧ ∀ i, moves i e (queue i s) (queue i s').
Proof.
  destruct c as [eid j p|eid j]; simpl; intros ([r sb] & E & [= <- ->])%bind_Return; revert E.
  - unfold send_packet. intros ([ra ba] & Ea & E)%bind_Return.
    destruct ra as [u|er]; injection E as <- <- <-; simpl.
    + split_and!; [done|by eapply authorize_Ok|]. intros i. exists []. unfold queue. simpl.
      case_bool_decide as Hij; subst; rewrite ?lookup_insert_eq, ?lookup_insert_ne by done; simpl;
        by rewrite ?app_nil_r.
    + split_and!; [done..|]. intros i. exists []. by rewrite app_nil_r.
  - unfold receive_packet. destruct (queues s !! j) as [[|p q]|] eqn:Eq.
    + intros [= <- <- <-]. split_and!; [done..|]. intros i. exists []. by rewrite app_nil_r.
    + intros ([ra ba] & Ea & E)%bind_Return.
      assert (policy s' = policy s ∧ ∀ i, queue i s = (if bool_decide (i = j) then [p] else []) ++ queue i s')
        as [Hpol Hq].
      { destruct ra; injection E as _ <- _; (split; [done|]); intros i; unfold queue; simpl;
          case_bool_decide; subst; by rewrite ?Eq, ?lookup_insert_eq, ?lookup_insert_ne by done. }
      split_and!; [done| |].
      * destruct ra as [u|er]; injection E as <- _ _; [|done]. by eapply authorize_Ok in Ea.
      * intros i. exists (if bool_decide (i = j) then [p] else []). rewrite Hq.
        destruct ra as [u|er]; injection E as <- _ _; simpl; rewrite ?app_nil_r; [done|].
        split_and!; [done|by apply sublist_nil_l|]. by case_bool_decide.
    + intros [= <- <- <-]. split_and!; [done..|]. intros i. exists []. by rewrite app_nil_r.
Qed.

Lemma serve_moves cs s b es s' b' :
  serve cs (s, b) = Return (es, (s', b')) →
  policy s' = policy s ∧ Forall (complies (policy s)) es ∧
  ∀ i, ∃ gone, queue i s ++ accepted i es = gone ++ queue i s' ∧
    delivered i es `sublist_of` gone ∧
    (existsb (failed_receive i) es = false → gone = delivered i es).
Proof.
  revert s b es. induction cs as [|c cs IH]; intros s b es; simpl.
  { intros [= <- -> ->]. split_and!; [done..|]. intros i. exists []. by rewrite app_nil_r. }
  intros ([e [s1 b1]] & Es & ([es1 sb] & El & [= <- ->])%bind_Return)%bind_Return.
  destruct (step_moves c s b e s1 b1 Es) as (Hp & He & Hm).
  destruct (IH _ _ _ El) as (Hp1 & Hes & Hm1). rewrite Hp in *.
  split_and!; [done|by constructor|]. intros i.
  destruct (Hm i) as (g & Hg & Hd & Hf), (Hm1 i) as (g1 & Hg1 & Hd1 & Hf1).
  exists (g ++ g1). unfold accepted, delivered in *. rewrite !bind_cons, app_assoc, Hg.
  rewrite <- !app_assoc, Hg1. split_and!; [done|by apply sublist_app|]. simpl.
  intros [He1 He2]%orb_false_iff. by rewrite (Hf He1), (Hf1 He2).
Qed.
End service_proofs.

(** C25: the network service is a family of first-in first-out queues, whatever the policy,
    the budget and the interleaving of callers and interfaces: from a new service, on each
    interface the packets accepted so far are those that left followed by those still
    queued; the delivered packets are among those that left, in the order they were sent,
    and are all of them unless a receive on that interface failed; every packet that was
    accepted or delivered had been allowed by the policy at that moment. *)
Theorem network_is_fifo `{PacketBudget B} pol cs b es s' b' :
  serve cs (new pol, b) = Return (es, (s', b')) →
  Forall (complies pol) es ∧
  ∀ i, ∃ gone, accepted i es = gone ++ queue i s' ∧ delivered i es `sublist_of` gone ∧
    (existsb (failed_receive i) es = false → gone = delivered i es).
Proof.
  intros (_ & Hc & Hm)%serve_moves. split; [done|]. intros i.
  destruct (Hm i) as (gone & Hg & ?). by exists gone.
Qed.

(** Everything is charged to nobody. *)
Definition no_budget : PacketBudget unit := λ _ _ b, Return (Ok tt, b).
Definition endpoint : Endpoint.t := Endpoint.new "10.0.0.1" 80.
Definition packet (n : N) : Packet.t := Packet.mk endpoint endpoint PacketProtocol.Udp [n].
Definition net_user : ExecutionId.t := ExecutionId.mk 101.
Definition eth (n : N) : NetworkInterfaceId.t := NetworkInterfaceId.mk n.
Definition traffic : list call :=
  [Send net_user (eth 1) (packet 1); Send net_user (eth 2) (packet 2);
   Send net_user (eth 1) (packet 3); Receive net_user (eth 1)].

Lemma network_is_fifo_witness :
  ∃ es s', @serve unit no_budget traffic (new NetworkPolicy.allow_all, tt) = Return (es, (s', tt)) ∧
    accepted (eth 1) es = [packet 1; packet 3] ∧ queue (eth 1) s' = [packet 3] ∧
    ∃ gone, accepted (eth 1) es = gone ++ queue (eth 1) s' ∧
      delivered (eth 1) es `sublist_of` gone.
Proof.
  destruct (@serve unit no_budget traffic (new NetworkPolicy.allow_all, tt))
    as [[es [s' []]]| |] eqn:E; [|by vm_compute in E..].
  exists es, s'. destruct (@network_is_fifo unit no_budget _ _ _ _ _ _ E) as [_ Hm].
  destruct (Hm (eth 1)) as (gone & Hg & Hd & _).
  vm_compute in E. injection E as <- <-.
  split_and!; [by vm_compute..|]. by exists gone.
Defined.

(** A packet that a receive refuses is gone: it was taken from the queue before the
    policy and the budget were asked. *)
Theorem refused_receive_loses_packet `{PacketBudget B} eid i s b e s' b' :
  receive_packet eid i (s, b) = Return (Err e, (s', b')) →
  ∃ p, queue i s = p :: queue i s'.
Proof.
  unfold receive_packet, queue. destruct (queues s !! i) as [[|p q]|]; [done| |done].
  intros ([r b1] & _ & E)%bind_Return. exists p. destruct r; [done|].
  injection E as _ <- _. simpl. by rewrite lookup_insert_eq.
Qed.

(** Packets may go out, but none may come in. *)
Definition outbound_only : NetworkPolicy.t :=
  NetworkPolicy.mk (λ c, match PacketContext.direction c with
                         | PacketDirection.Send => NetworkDecision.Allow
                         | PacketDirection.Receive => NetworkDecision.Deny "inbound" end).

Lemma refused_receive_loses_packet_witness :
  ∃ p, queue (eth 1) (mk outbound_only {[eth 1 := [packet 1]]}) = p :: queue (eth 1) (mk outbound_only {[eth 1 := []]}).
Proof.
  apply (@refused_receive_loses_packet unit no_budget net_user (eth 1)
    (mk outbound_only {[eth 1 := [packet 1]]}) tt (NetworkError.PolicyDenied "inbound")
    (mk outbound_only {[eth 1 := []]}) tt).
  by vm_compute.
Defined.

(** *** The packet budget *)

(** Whether an event was charged for and passed. *)
Definition passed (e : event) : bool :=
  match e with Sent _ _ _ (Ok _) | Received _ _ (Ok (Some _)) => true | _ => false end.
Definition caller (c : call) : ExecutionId.t :=
  match c with Send eid _ _ | Receive eid _ => eid end.

(** A call charges at most once, and passes only if the charge was accepted. *)
Lemma step_charges {B} `{PacketBudget B} (P : N → B → Prop) limit used c s b :
  P used b → used ≤ limit →
  (∀ op, ∃ res b', consume_packet (caller c) op b = Return (res, b') ∧
     P (used + if is_ok res then 1 else 0) b' ∧ (used + if is_ok res then 1 else 0) ≤ limit) →
  ∃ e s' b', step c (s, b) = Return (e, (s', b')) ∧
    P (used + N.b2n (passed e)) b' ∧ used + N.b2n (passed e) ≤ limit.
Proof.
  intros HP Hle Hc.
  assert (∀ i d op p s1, ∃ r b', authorize (caller c) i d op p s1 b = Return (r, b') ∧
    P (used + N.b2n (is_ok r)) b' ∧ used + N.b2n (is_ok r) ≤ limit) as Ha.
  { intros i d op p s1. unfold authorize. destruct (NetworkPolicy.evaluate _ _).
    - destruct (Hc op) as (res & b' & -> & HP' & Hle'). simpl. do 2 eexists. split; [done|].
      by destruct res.
    - do 2 eexists. split; [done|]. simpl. by rewrite N.add_0_r. }
  destruct c as [eid i p|eid i]; simpl in *.
  - destruct (Ha i PacketDirection.Send NetPacketOperation.Send p s) as (r & b' & -> & ? & ?). simpl.
    destruct r as [[]|er]; simpl; do 3 eexists; by split.
  - destruct (queues s !! i) as [[|p q]|].
    + do 3 eexists. split; [done|]. simpl. by rewrite N.add_0_r.
    + destruct (Ha i PacketDirection.Receive NetPacketOperation.Receive p
        (s <| queues := <[i := q]> (queues s) |>)) as (r & b' & -> & ? & ?). simpl.
      destruct r as [[]|er]; simpl; do 3 eexists; by split.
    + do 3 eexists. split; [done|]. simpl. by rewrite N.add_0_r.
Qed.

(** Over the kernel, the packet budget bounds the traffic: whatever an identity with
    [limit] packets sends and receives, under any policy, no call panics, and the packets
    that passed, added to what was used before, never exceed the limit. *)
Theorem network_stays_within_packet_budget `{HashOrder} `{UuidFormat} eid limit used cs s
    (k : Kernel.t) :
  Forall (λ c, caller c = eid) cs →
  account ResourceBudget.packet_count ResourceUsage.packet_count eid limit used k →
  used ≤ limit → limit < u64_max →
  ∃ es s' k', serve cs (s, k) = Return (es, (s', k')) ∧
    used + sumN ((N.b2n ∘ passed) <$> es) ≤ limit ∧
    account ResourceBudget.packet_count ResourceUsage.packet_count eid limit
      (used + sumN ((N.b2n ∘ passed) <$> es)) k'.
Proof.
  intros Hcs. revert used s k. induction Hcs as [|c cs Hc Hcs IH]; intros used s k Ha Hle Hmax; simpl.
  { exists [], s, k. simpl. by rewrite N.add_0_r. }
  destruct (step_charges
    (λ used, account ResourceBudget.packet_count ResourceUsage.packet_count eid limit used)
    limit used c s k Ha Hle) as (e & s1 & k1 & -> & Ha1 & Hle1).
  { intros op. rewrite Hc.
    eapply (account_charge ResourceBudget.packet_count ResourceUsage.packet_count eid); try done.
    destruct op; by apply unit_charge_outcome. }
  simpl. destruct (IH _ s1 k1 Ha1 Hle1 Hmax) as (es & s' & k' & -> & Hn & Hk). simpl.
  exists (e :: es), s', k'. simpl. by rewrite N.add_assoc.
Qed.

(** Identity 101 may pass two packets. *)
Definition packet_kernel : Kernel.t :=
  sample_state [KOp.CreateIdentity (IdentityMetadata.with_budget
    (ResourceBudget.with_packet_count (Quantity.new 2) ResourceBudget.unlimited)
    (IdentityMetadata.new net_user IdentityKind.Component TrustDomain.user "a" 0))].

Lemma network_stays_within_packet_budget_witness :
  let B := @kernel_packet_budget canonical_order sample_format in
  ∃ es s' k', @serve Kernel.t B traffic (new NetworkPolicy.allow_all, packet_kernel)
      = Return (es, (s', k')) ∧ 0 + sumN ((N.b2n ∘ passed) <$> es) ≤ 2 ∧
    account ResourceBudget.packet_count ResourceUsage.packet_count net_user 2
      (0 + sumN ((N.b2n ∘ passed) <$> es)) k'.
Proof.
  apply (@network_stays_within_packet_budget canonical_order sample_format net_user 2 0 traffic
    (new NetworkPolicy.allow_all) packet_kernel); [by repeat constructor| |lia|by vm_compute].
  eexists _, _. split_and!; by vm_compute.
Defined.
End NetworkSpec.

(** ** Remote calls *)

(** What the two sides rely on of [serde_json]: a value of these types has an encoding,
    and decoding it gives the value back. *)
Class JsonRoundTrip (T : Type) `{JsonCodec T} :=
  json_round_trip : ∀ x : T, ∃ bytes, to_vec x = Ok bytes ∧ from_slice bytes = Ok x.

Module RemoteSpec.
Section remote.
Context `{JsonRoundTrip RemoteCall.t} `{JsonRoundTrip RemoteResponse.t}.
Context {S : Type} `{RemoteHandler S} (ds : DrawnEnvelope.t).

Lemma decode_encode_call d c m : encode_call d c = Ok m → decode_call m = Ok c.
Proof.
  unfold encode_call, decode_call, MessagePayload.new, MessagePayload.deserialize.
  destruct (json_round_trip c) as (bytes & -> & Hb). simpl. intros [= <-]. simpl. by rewrite Hb.
Qed.

Lemma encode_response_Ok d r id :
  ∃ m, encode_response d r id = Ok m ∧ decode_response m = Ok r ∧
    MessageEnvelope.correlation_id m = Some id.
Proof.
  unfold encode_response, decode_response, MessagePayload.new, MessagePayload.deserialize.
  destruct (json_round_trip r) as (bytes & -> & Hb). simpl. eexists. split; [done|]. simpl.
  by rewrite Hb.
Qed.

(** A transport that hands each message to a server and keeps its reply. *)
Record loopback := Loopback { pending : option MessageEnvelope.t; server : RemoteIpcServer.t S }.

#[local] Instance loopback_transport : RemoteTransport loopback := {|
  send m l :=
    let '(r, sv) := RemoteIpcServer.handle_message ds m (server l) in
    match r with
    | Err e => (Err e, Loopback (pending l) sv)
    | Ok response => (Ok tt, Loopback (Some response) sv)
    end;
  receive l := (ok_or (pending l) (RemoteIpcError.Codec "no response"), Loopback None (server l))
|}.

(** The server on a message that carries a call: the handler runs exactly when both the
    server and the authority of the call allow the capability. *)
Lemma handle_message_call dc d c m s :
  encode_call dc c = Ok m →
  let allowed := bool_decide (RemoteCall.cap_id c ∈ RemoteIpcServer.allowed_caps s)
                 && CapabilityAuthority.allows (RemoteCall.cap_id c) (RemoteCall.authority c) in
  let '(r, h) := if allowed then handle c (RemoteIpcServer.handler s)
                 else (Err "unauthorized", RemoteIpcServer.handler s) in
  ∃ reply, RemoteIpcServer.handle_message d m s
      = (Ok reply, RemoteIpcServer.mk h (RemoteIpcServer.allowed_caps s)) ∧
    decode_response reply = Ok (RemoteResponse.mk (RemoteCall.request_id c) r) ∧
    MessageEnvelope.correlation_id reply = Some (MessageEnvelope.id m).
Proof.
  intros Hm. unfold RemoteIpcServer.handle_message. rewrite (decode_encode_call _ _ _ Hm).
  cbv zeta. rewrite <- negb_andb.
  destruct (bool_decide _ && _); cbn [negb].
  - destruct (handle c (RemoteIpcServer.handler s)) as [r h].
    destruct (encode_response_Ok d (RemoteResponse.mk (RemoteCall.request_id c) r)
      (MessageEnvelope.id m)) as (reply & -> & ? & ?). by exists reply.
  - destruct (encode_response_Ok d (RemoteResponse.mk (RemoteCall.request_id c) (Err "unauthorized"))
      (MessageEnvelope.id m)) as (reply & -> & ? & ?). exists reply. by destruct s.
Qed.

(** The meaning of a remote call, without messages. *)
Definition direct_call (c : RemoteCall.t) (s : RemoteIpcServer.t S)
    : result (list N) RemoteIpcError.t * S :=
  if negb (CapabilityAuthority.allows (RemoteCall.cap_id c) (RemoteCall.authority c))
  then (Err RemoteIpcError.Unauthorized, RemoteIpcServer.handler s)
  else if bool_decide (RemoteCall.cap_id c ∈ RemoteIpcServer.allowed_caps s)
  then let '(r, h) := handle c (RemoteIpcServer.handler s) in (map_err RemoteIpcError.Codec r, h)
  else (Err (RemoteIpcError.Codec "unauthorized"), RemoteIpcServer.handler s).

(** A remote call over a loopback is a guarded call of the handler.  Whatever the
    handler, the authority of the client and the capabilities of the server are: the call
    is refused on the client's side when its authority lacks the capability, refused by
    the server when the server does not export it, and otherwise runs the handler once on
    exactly the call that was made and returns its answer; in the refused cases the state
    of the handler is untouched, and the guards never change. *)
Theorem remote_call_is_guarded_call request dc cap action payload pend s a :
  let c := RemoteCall.mk request cap action payload a in
  let '(r, cl) := RemoteIpcClient.call request dc cap action payload
                    (RemoteIpcClient.new (Loopback pend s) a) in
  (r, RemoteIpcServer.handler (server (RemoteIpcClient.transport cl))) = direct_call c s ∧
  RemoteIpcServer.allowed_caps (server (RemoteIpcClient.transport cl))
    = RemoteIpcServer.allowed_caps s ∧ RemoteIpcClient.authority cl = a.
Proof.
  intros c. unfold RemoteIpcClient.call, direct_call.
  change (RemoteCall.cap_id c) with cap. change (RemoteCall.authority c) with a.
  cbn [RemoteIpcClient.authority]. destruct (CapabilityAuthority.allows cap a) eqn:Ea; simpl; [|done].
  fold c. destruct (encode_call dc c) as [m|e] eqn:Em.
  2:{ exfalso. unfold encode_call, MessagePayload.new in Em.
      destruct (json_round_trip c) as (bytes & Hb & _). by rewrite Hb in Em. }
  pose proof (handle_message_call dc ds c m s Em) as Hm. cbv zeta in Hm.
  change (RemoteCall.cap_id c) with cap in Hm. change (RemoteCall.authority c) with a in Hm.
  rewrite Ea, andb_true_r in Hm. case_bool_decide.
  - destruct (handle c (RemoteIpcServer.handler s)) as [r h]. destruct Hm as (reply & -> & Hr & _).
    simpl. rewrite Hr. simpl. by rewrite bool_decide_eq_true_2.
  - destruct Hm as (reply & -> & Hr & _). simpl. rewrite Hr. simpl.
    by rewrite bool_decide_eq_true_2.
Qed.
End remote.

(** A codec with the law: the bytes of the number that a value is counted by. *)
Definition byte_codec `{Countable T} : JsonCodec T := {|
  to_vec x := Ok (let n := N.pos (encode x) in to_le (N.to_nat (N.size n)) n);
  from_slice bytes :=
    match from_le bytes with
    | N0 => Err "unexpected end"
    | Npos p => ok_or (decode p) "invalid value"
    end
|}.

Lemma byte_codec_round_trip `{Countable T} : @JsonRoundTrip T byte_codec.
Proof.
  intros x. eexists. split; [done|]. unfold byte_codec. cbn [from_slice].
  rewrite from_le_to_le, decode_encode; [done|].
  eapply N.lt_le_trans; [apply N.size_gt|]. rewrite N2Nat.id.
  by apply N.pow_le_mono_l.
Qed.

#[local] Instance authority_eq_dec : EqDecision CapabilityAuthority.t.
Proof. solve_decision. Defined.
#[local] Instance call_eq_dec : EqDecision RemoteCall.t.
Proof. solve_decision. Defined.
#[local] Instance response_eq_dec : EqDecision RemoteResponse.t.
Proof. intros [a [x|x]] [b [y|y]]; unfold Decision; decide equality; solve_decision. Defined.
#[local] Program Instance call_countable : Countable RemoteCall.t :=
  inj_countable' (λ c, (RemoteCall.request_id c, RemoteCall.cap_id c, RemoteCall.action c,
      RemoteCall.payload c, CapabilityAuthority.caller (RemoteCall.authority c),
      CapabilityAuthority.allowed_caps (RemoteCall.authority c)))
    (λ '(r, c, a, p, w, l), RemoteCall.mk r c a p (CapabilityAuthority.mk w l)) _.
Next Obligation. by intros [????[]]. Qed.
#[local] Program Instance response_countable : Countable RemoteResponse.t :=
  inj_countable' (λ r, (RemoteResponse.request_id r,
      match RemoteResponse.result_ r with Ok x => inl x | Err e => inr e end))
    (λ '(r, s), RemoteResponse.mk r (match s with inl x => Ok x | inr e => Err e end)) _.
Next Obligation. by intros [? []]. Qed.

(** A handler that counts its calls and echoes the payload. *)
Definition counting_echo : RemoteHandler N := λ c n, (Ok (RemoteCall.payload c), n + 1).

Lemma remote_call_is_guarded_call_witness :
  let d := DrawnEnvelope.mk (MessageId.mk 5) (ServiceId.mk 6) in
  let a := CapabilityAuthority.mk "client" [42] in
  let c := RemoteCall.mk (MessageId.mk 1) 42 "echo" [104; 105] a in
  let s := RemoteIpcServer.new 0 [42] in
  @direct_call N counting_echo c s = (Ok [104; 105], 1) ∧
  let '(r, cl) := @RemoteIpcClient.call byte_codec byte_codec (loopback (S := N))
      (@loopback_transport byte_codec byte_codec N counting_echo d)
      (MessageId.mk 1) d 42 "echo" [104; 105] (RemoteIpcClient.new (Loopback None s) a) in
  (r, RemoteIpcServer.handler (server (RemoteIpcClient.transport cl)))
    = @direct_call N counting_echo c s ∧
  RemoteIpcServer.allowed_caps (server (RemoteIpcClient.transport cl))
    = RemoteIpcServer.allowed_caps s ∧ RemoteIpcClient.authority cl = a.
Proof.
  intros d a c s. split; [by vm_compute|].
  apply (@remote_call_is_guarded_call byte_codec byte_codec_round_trip byte_codec
    byte_codec_round_trip N counting_echo d (MessageId.mk 1) d 42 "echo" [104; 105] None s a).
Defined.
End RemoteSpec.

(** ** System calls as messages *)

Module MessageCallSpec.
(** An error of the kernel survives the message. *)
Lemma error_survives e : SyscallError.into (SyscallError.from e) = e.
Proof. by destruct e. Qed.

(** A call by its request, and its result: of the client, and of the kernel. *)
Section client.
Context {T : Type} `{SyscallTransport T} `{JsonCodec SyscallRequest.t} `{JsonCodec SyscallResponse.t}.
Definition client_call (d : CallDrawn.t) (p : SyscallRequestPayload.t) (c : SyscallClient.t T)
    : outcome (SyscallResponsePayload.t KernelError.t * SyscallClient.t T) :=
  let wrap {A} (f : result A KernelError.t → SyscallResponsePayload.t KernelError.t) m := '(r, c) ← m; Return (f r, c) in
  match p with
  | SyscallRequestPayload.SpawnTask x => wrap SyscallResponsePayload.SpawnTask (SyscallClient.call_spawn_task d x c)
  | SyscallRequestPayload.CreateChannel => wrap SyscallResponsePayload.CreateChannel (SyscallClient.call_create_channel d c)
  | SyscallRequestPayload.SendMessage ch m => wrap SyscallResponsePayload.SendMessage (SyscallClient.call_send_message d ch m c)
  | SyscallRequestPayload.ReceiveMessage ch t => wrap SyscallResponsePayload.ReceiveMessage (SyscallClient.call_receive_message d ch t c)
  | SyscallRequestPayload.Now => '(i, c) ← SyscallClient.call_now d c; Return (SyscallResponsePayload.Now (Ok i), c)
  | SyscallRequestPayload.Sleep x => wrap SyscallResponsePayload.Sleep (SyscallClient.call_sleep d x c)
  | SyscallRequestPayload.GrantCapability t x => wrap SyscallResponsePayload.GrantCapability (SyscallClient.call_grant_capability d t x c)
  | SyscallRequestPayload.RegisterService i ch => wrap SyscallResponsePayload.RegisterService (SyscallClient.call_register_service d i ch c)
  | SyscallRequestPayload.LookupService i => wrap SyscallResponsePayload.LookupService (SyscallClient.call_lookup_service d i c)
  end.
Fixpoint client_calls (l : list (CallDrawn.t * SyscallRequestPayload.t)) (c : SyscallClient.t T)
    : outcome (list (SyscallResponsePayload.t KernelError.t) * SyscallClient.t T) :=
  match l with
  | [] => Return ([], c)
  | (d, p) :: l => '(r, c) ← client_call d p c; '(rs, c) ← client_calls l c; Return (r :: rs, c)
  end.
End client.

Section kernel.
Context {K : Type} `{KernelApi K}.
(** A request performed by its method of [KernelApi], called directly. *)
Definition direct (d : Drawn.t) (p : SyscallRequestPayload.t) (k : K)
    : outcome (SyscallResponsePayload.t KernelError.t * K) :=
  match p with
  | SyscallRequestPayload.SpawnTask t =>
      '(r, k) ← api_spawn_task d t k; Return (SyscallResponsePayload.SpawnTask r, k)
  | SyscallRequestPayload.CreateChannel =>
      '(r, k) ← api_create_channel d k; Return (SyscallResponsePayload.CreateChannel r, k)
  | SyscallRequestPayload.SendMessage ch m =>
      '(r, k) ← api_send_message ch m k; Return (SyscallResponsePayload.SendMessage r, k)
  | SyscallRequestPayload.ReceiveMessage ch timeout =>
      '(r, k) ← api_receive_message ch timeout k; Return (SyscallResponsePayload.ReceiveMessage r, k)
  | SyscallRequestPayload.Now => Return (SyscallResponsePayload.Now (Ok (api_now k)), k)
  | SyscallRequestPayload.Sleep t =>
      '(r, k) ← api_sleep t k; Return (SyscallResponsePayload.Sleep r, k)
  | SyscallRequestPayload.GrantCapability t x =>
      '(r, k) ← api_grant_capability t x k; Return (SyscallResponsePayload.GrantCapability r, k)
  | SyscallRequestPayload.RegisterService i ch =>
      '(r, k) ← api_register_service i ch k; Return (SyscallResponsePayload.RegisterService r, k)
  | SyscallRequestPayload.LookupService i =>
      Return (SyscallResponsePayload.LookupService (api_lookup_service i k), k)
  end.
Lemma map_err_id {A E} (r : result A E) : map_err id r = r.
Proof. by destruct r. Qed.
(** The server performs a request as its method does. *)
Lemma perform_is_direct d p (k : K) : SyscallServer.perform id d p k = direct d p k.
Proof.
  destruct p; cbn [SyscallServer.perform direct]; try (cbn; by rewrite ?map_err_id);
    match goal with |- context [mbind _ ?m] => destruct m as [[r k']| |]; cbn; try done end;
    by rewrite map_err_id.
Qed.
Fixpoint kernel_calls (l : list (CallDrawn.t * SyscallRequestPayload.t)) (k : K)
    : outcome (list (SyscallResponsePayload.t KernelError.t) * K) :=
  match l with
  | [] => Return ([], k)
  | (d, p) :: l =>
      '(r, k) ← direct (ServeDrawn.kernel (CallDrawn.serve d)) p k;
      '(rs, k) ← kernel_calls l k; Return (r :: rs, k)
  end.

Context `{JsonRoundTrip SyscallRequest.t} `{JsonRoundTrip SyscallResponse.t}.
(** A client of a kernel behind the loopback. *)
Definition behind (codec server_codec : SyscallCodec.t) (k : K) : SyscallClient.t (LoopbackTransport.t K) :=
  SyscallClient.new (LoopbackTransport.new (SyscallServer.new k server_codec)) codec.

Lemma round_trip_performs d p codec server_codec k :
  SyscallClient.round_trip d p (behind codec server_codec k) =
  ('(r, k) ← SyscallServer.perform SyscallError.from (ServeDrawn.kernel (CallDrawn.serve d)) p k;
   Return (Ok (SyscallResponse.mk (CallDrawn.request_id d) r), behind codec server_codec k)).
Proof.
  unfold SyscallClient.round_trip, SyscallCodec.encode_request, MessagePayload.new.
  destruct (json_round_trip (SyscallRequest.mk (CallDrawn.request_id d) p)) as (bytes & -> & Hb). cbn [map_ok].
  unfold SyscallClient.on_transport. cbn [transport_send LoopbackTransport.loopback SyscallClient.transport behind].
  unfold SyscallServer.handle_message, SyscallCodec.decode_request, SyscallCodec.check, MessagePayload.deserialize.
  simpl. rewrite Hb. simpl.
  destruct (SyscallServer.perform _ _ _ _) as [[r k']| |]; simpl; try done.
  unfold SyscallCodec.encode_response, MessagePayload.new.
  destruct (json_round_trip (SyscallResponse.mk (CallDrawn.request_id d) r)) as (rbytes & -> & Hr). simpl.
  unfold SyscallCodec.decode_response, SyscallCodec.check, MessagePayload.deserialize. simpl. rewrite Hr. simpl.
  by rewrite bool_decide_eq_true_2.
Qed.
Lemma client_call_performs d p codec server_codec k :
  client_call d p (behind codec server_codec k) =
  ('(r, k) ← SyscallServer.perform id (ServeDrawn.kernel (CallDrawn.serve d)) p k; Return (r, behind codec server_codec k)).
Proof.
  destruct p; cbn [client_call]; unfold SyscallClient.call_spawn_task, SyscallClient.call_create_channel,
    SyscallClient.call_send_message, SyscallClient.call_receive_message, SyscallClient.call_now, SyscallClient.call_sleep,
    SyscallClient.call_grant_capability, SyscallClient.call_register_service, SyscallClient.call_lookup_service, SyscallClient.call;
    rewrite round_trip_performs; cbn [SyscallServer.perform];
    try match goal with
    | |- context [api_lookup_service ?i ?k] => destruct (api_lookup_service i k) as [x|e]
    | |- context [api_spawn_task ?a ?b ?k] => destruct (api_spawn_task a b k) as [[[x|e] k']| |]
    | |- context [api_create_channel ?a ?k] => destruct (api_create_channel a k) as [[[x|e] k']| |]
    | |- context [api_send_message ?a ?b ?k] => destruct (api_send_message a b k) as [[[x|e] k']| |]
    | |- context [api_receive_message ?a ?b ?k] => destruct (api_receive_message a b k) as [[[x|e] k']| |]
    | |- context [api_sleep ?a ?k] => destruct (api_sleep a k) as [[[x|e] k']| |]
    | |- context [api_grant_capability ?a ?b ?k] => destruct (api_grant_capability a b k) as [[[x|e] k']| |]
    | |- context [api_register_service ?a ?b ?k] => destruct (api_register_service a b k) as [[[x|e] k']| |]
    end; cbn; unfold SyscallClient.extract; cbn; rewrite ?error_survives; done.
Qed.

(** C38: System calls that travel as messages are calls of the kernel.  Any sequence of calls of a client
    whose transport is the loopback to a server gives the results that the kernel behind the server gives
    when its [KernelApi] methods are called directly with the same arguments, errors and panics included,
    and leaves that kernel in the same state with no response pending; provided that requests and
    responses survive their JSON encoding ([JsonRoundTrip]). *)
Theorem message_calls_are_kernel_calls (l : list (CallDrawn.t * SyscallRequestPayload.t)) codec server_codec (k : K) :
  client_calls l (behind codec server_codec k) =
  ('(rs, k) ← kernel_calls l k; Return (rs, behind codec server_codec k)).
Proof.
  revert k. induction l as [|[d p] l IH]; intros k; [done|]. cbn [client_calls kernel_calls]. rewrite client_call_performs, perform_is_direct.
  destruct (direct _ p k) as [[r k']| |]; cbn [mbind outcome_bind]; try done. rewrite IH.
  by destruct (kernel_calls l k') as [[rs k'']| |].
Qed.
End kernel.

(** *** A codec and a kernel *)

(** A codec through another type. *)
Definition codec_via {T U} `{Countable U} (f : T → U) (g : U → T) : JsonCodec T := {|
  to_vec x := to_vec (JsonCodec := RemoteSpec.byte_codec) (f x);
  from_slice b := map_ok g (from_slice (JsonCodec := RemoteSpec.byte_codec) b)
|}.
Lemma codec_via_round_trip {T U} `{Countable U} (f : T → U) (g : U → T) :
  (∀ x, g (f x) = x) → @JsonRoundTrip T (codec_via f g).
Proof.
  intros Hgf x. destruct (RemoteSpec.byte_codec_round_trip (f x)) as (b & E1 & E2). exists b. split; [exact E1|].
  cbn [from_slice codec_via]. rewrite E2. simpl. by rewrite Hgf.
Qed.
(** The messages as sums and products. *)
Definition envelope_data (m : MessageEnvelope.t) :=
  (MessageEnvelope.id m, MessageEnvelope.destination m, MessageEnvelope.source m, MessageEnvelope.action m,
   (SchemaVersion.major (MessageEnvelope.schema_version m), SchemaVersion.minor (MessageEnvelope.schema_version m)),
   MessageEnvelope.correlation_id m, MessagePayload.data (MessageEnvelope.payload m)).
Definition data_envelope x : MessageEnvelope.t :=
  let '(i, d, s, a, (major, minor), c, p) := x in MessageEnvelope.mk i d s a (SchemaVersion.new major minor) c (MessagePayload.mk p).
Definition request_sum : Type :=
  (string * list N) + (unit + (ChannelId.t * (MessageId.t * ServiceId.t * option TaskId.t * string * (N * N) * option MessageId.t * list N)
  + (ChannelId.t * option N + (unit + (N + (TaskId.t * N + (ServiceId.t * ChannelId.t + ServiceId.t))))))).
Definition request_data (r : SyscallRequest.t) : MessageId.t * request_sum :=
  (SyscallRequest.request_id r,
   match SyscallRequest.payload r with
   | SyscallRequestPayload.SpawnTask d => inl (TaskDescriptor.name d, Cap.id <$> TaskDescriptor.capabilities d)
   | SyscallRequestPayload.CreateChannel => inr (inl tt)
   | SyscallRequestPayload.SendMessage ch m => inr (inr (inl (ch, envelope_data m)))
   | SyscallRequestPayload.ReceiveMessage ch t => inr (inr (inr (inl (ch, Duration.nanos <$> t))))
   | SyscallRequestPayload.Now => inr (inr (inr (inr (inl tt))))
   | SyscallRequestPayload.Sleep d => inr (inr (inr (inr (inr (inl (Duration.nanos d))))))
   | SyscallRequestPayload.GrantCapability t c => inr (inr (inr (inr (inr (inr (inl (t, Cap.id c)))))))
   | SyscallRequestPayload.RegisterService i ch => inr (inr (inr (inr (inr (inr (inr (inl (i, ch))))))))
   | SyscallRequestPayload.LookupService i => inr (inr (inr (inr (inr (inr (inr (inr i)))))))
   end).
Definition data_request (x : MessageId.t * request_sum) : SyscallRequest.t :=
  SyscallRequest.mk x.1
    match x.2 with
    | inl (n, l) => SyscallRequestPayload.SpawnTask (TaskDescriptor.mk n (Cap.mk <$> l))
    | inr (inl _) => SyscallRequestPayload.CreateChannel
    | inr (inr (inl (ch, m))) => SyscallRequestPayload.SendMessage ch (data_envelope m)
    | inr (inr (inr (inl (ch, t)))) => SyscallRequestPayload.ReceiveMessage ch (Duration.mk <$> t)
    | inr (inr (inr (inr (inl _)))) => SyscallRequestPayload.Now
    | inr (inr (inr (inr (inr (inl d))))) => SyscallRequestPayload.Sleep (Duration.mk d)
    | inr (inr (inr (inr (inr (inr (inl (t, c))))))) => SyscallRequestPayload.GrantCapability t (Cap.mk c)
    | inr (inr (inr (inr (inr (inr (inr (inl (i, ch)))))))) => SyscallRequestPayload.RegisterService i ch
    | inr (inr (inr (inr (inr (inr (inr (inr i))))))) => SyscallRequestPayload.LookupService i
    end.
Lemma request_data_back r : data_request (request_data r) = r.
Proof.
  destruct r as [i []]; unfold data_request, request_data; simpl; try done.
  - destruct descriptor as [n l]. simpl. do 2 f_equal. rewrite <-list_fmap_compose. f_equal. rewrite <-(list_fmap_id l) at 2.
    apply list_fmap_ext. by intros ? [] _.
  - by destruct message as [????[] ? []].
  - by destruct timeout as [[]|].
  - by destruct duration.
  - by destruct capability.
Qed.
Definition kinds : list SyscallErrorKind.t :=
  [SyscallErrorKind.SpawnFailed; SyscallErrorKind.ChannelError; SyscallErrorKind.SendFailed; SyscallErrorKind.ReceiveFailed;
   SyscallErrorKind.Timeout; SyscallErrorKind.ServiceNotFound; SyscallErrorKind.ServiceAlreadyRegistered;
   SyscallErrorKind.InsufficientAuthority; SyscallErrorKind.InvalidCapability; SyscallErrorKind.ResourceExhausted;
   SyscallErrorKind.ResourceBudgetExceeded; SyscallErrorKind.ResourceBudgetExhausted; SyscallErrorKind.Unknown].
Definition kind_index (k : SyscallErrorKind.t) : nat :=
  match k with
  | SyscallErrorKind.SpawnFailed => 0 | SyscallErrorKind.ChannelError => 1 | SyscallErrorKind.SendFailed => 2
  | SyscallErrorKind.ReceiveFailed => 3 | SyscallErrorKind.Timeout => 4 | SyscallErrorKind.ServiceNotFound => 5
  | SyscallErrorKind.ServiceAlreadyRegistered => 6 | SyscallErrorKind.InsufficientAuthority => 7
  | SyscallErrorKind.InvalidCapability => 8 | SyscallErrorKind.ResourceExhausted => 9
  | SyscallErrorKind.ResourceBudgetExceeded => 10 | SyscallErrorKind.ResourceBudgetExhausted => 11 | SyscallErrorKind.Unknown => 12
  end.
Definition failure : Type := nat * string * option string * option N * option N * option string * option string.
Definition result_data {A B} (f : A → B) (r : result A SyscallError.t) : B + failure :=
  match r with
  | Ok x => inl (f x)
  | Err (SyscallError.mk k m r l u i o) => inr (kind_index k, m, r, l, u, i, o)
  end.
Definition data_result {A B} (g : B → A) (x : B + failure) : result A SyscallError.t :=
  match x with
  | inl x => Ok (g x)
  | inr (k, m, r, l, u, i, o) => Err (SyscallError.mk (default SyscallErrorKind.Unknown (kinds !! k)) m r l u i o)
  end.
Lemma result_data_back {A B} (f : A → B) (g : B → A) r : (∀ x, g (f x) = x) → data_result g (result_data f r) = r.
Proof. intros Hgf. destruct r as [x|[[] ? ? ? ? ? ?]]; simpl; [by rewrite Hgf|done..]. Qed.
Definition envelope_sum : Type := MessageId.t * ServiceId.t * option TaskId.t * string * (N * N) * option MessageId.t * list N.
Definition response_sum : Type :=
  (TaskId.t + failure) + ((ChannelId.t + failure) + ((unit + failure) + ((envelope_sum + failure) + ((N + failure)
  + ((unit + failure) + ((unit + failure) + ((unit + failure) + (ChannelId.t + failure)))))))).
Definition response_data (r : SyscallResponse.t) : MessageId.t * response_sum :=
  (SyscallResponse.request_id r,
   match SyscallResponse.payload r with
   | SyscallResponsePayload.SpawnTask x => inl (result_data TaskHandle.task_id x)
   | SyscallResponsePayload.CreateChannel x => inr (inl (result_data id x))
   | SyscallResponsePayload.SendMessage x => inr (inr (inl (result_data id x)))
   | SyscallResponsePayload.ReceiveMessage x => inr (inr (inr (inl (result_data envelope_data x))))
   | SyscallResponsePayload.Now x => inr (inr (inr (inr (inl (result_data Instant.nanos x)))))
   | SyscallResponsePayload.Sleep x => inr (inr (inr (inr (inr (inl (result_data id x))))))
   | SyscallResponsePayload.GrantCapability x => inr (inr (inr (inr (inr (inr (inl (result_data id x)))))))
   | SyscallResponsePayload.RegisterService x => inr (inr (inr (inr (inr (inr (inr (inl (result_data id x))))))))
   | SyscallResponsePayload.LookupService x => inr (inr (inr (inr (inr (inr (inr (inr (result_data id x))))))))
   end).
Definition data_response (x : MessageId.t * response_sum) : SyscallResponse.t :=
  SyscallResponse.mk x.1
    match x.2 with
    | inl x => SyscallResponsePayload.SpawnTask (data_result TaskHandle.mk x)
    | inr (inl x) => SyscallResponsePayload.CreateChannel (data_result id x)
    | inr (inr (inl x)) => SyscallResponsePayload.SendMessage (data_result id x)
    | inr (inr (inr (inl x))) => SyscallResponsePayload.ReceiveMessage (data_result data_envelope x)
    | inr (inr (inr (inr (inl x)))) => SyscallResponsePayload.Now (data_result Instant.mk x)
    | inr (inr (inr (inr (inr (inl x))))) => SyscallResponsePayload.Sleep (data_result id x)
    | inr (inr (inr (inr (inr (inr (inl x)))))) => SyscallResponsePayload.GrantCapability (data_result id x)
    | inr (inr (inr (inr (inr (inr (inr (inl x))))))) => SyscallResponsePayload.RegisterService (data_result id x)
    | inr (inr (inr (inr (inr (inr (inr (inr x))))))) => SyscallResponsePayload.LookupService (data_result id x)
    end.
Lemma response_data_back r : data_response (response_data r) = r.
Proof.
  destruct r as [i []]; unfold data_response, response_data; cbn [fst snd SyscallResponse.payload SyscallResponse.request_id];
    rewrite result_data_back; try done; first [by intros []|by intros [????[] ? []]].
Qed.
#[local] Instance request_codec : JsonCodec SyscallRequest.t := codec_via request_data data_request.
#[local] Instance response_codec : JsonCodec SyscallResponse.t := codec_via response_data data_response.
#[local] Instance request_codec_lawful : JsonRoundTrip SyscallRequest.t.
Proof. apply codec_via_round_trip, request_data_back. Qed.
#[local] Instance response_codec_lawful : JsonRoundTrip SyscallResponse.t.
Proof. apply codec_via_round_trip, response_data_back. Qed.
#[local] Existing Instances canonical_order sample_format sample_hasher.
Definition drawn (n : N) : CallDrawn.t :=
  CallDrawn.mk (MessageId.mk n) (MessageId.mk (n + 1))
    (ServeDrawn.mk (MessageId.mk (n + 2))
       (Drawn.mk (TaskId.mk (n + 3)) (ExecutionId.mk (n + 4)) (ChannelId.mk (n + 5)) (AddressSpaceId.mk (n + 6)) (MemoryRegionId.mk (n + 7)))).
Definition sample_calls : list (CallDrawn.t * SyscallRequestPayload.t) :=
  [(drawn 10, SyscallRequestPayload.CreateChannel);
   (drawn 20, SyscallRequestPayload.RegisterService (ServiceId.mk 1) (ChannelId.mk 15));
   (drawn 30, SyscallRequestPayload.LookupService (ServiceId.mk 1));
   (drawn 40, SyscallRequestPayload.LookupService (ServiceId.mk 2));
   (drawn 50, SyscallRequestPayload.Now)].
Definition answers {A} (x : outcome (A * Kernel.t)) : outcome A := '(a, _) ← x; Return a.
Lemma message_calls_are_kernel_calls_witness :
  (∃ e, answers (kernel_calls sample_calls (sample_state []))
     = Return [SyscallResponsePayload.CreateChannel (Ok (ChannelId.mk 15)); SyscallResponsePayload.RegisterService (Ok tt);
               SyscallResponsePayload.LookupService (Ok (ChannelId.mk 15)); SyscallResponsePayload.LookupService (Err e);
               SyscallResponsePayload.Now (Ok (Instant.mk 0))]) ∧
  client_calls sample_calls (behind (SyscallCodec.new (ServiceId.mk 9)) (SyscallCodec.new (ServiceId.mk 9)) (sample_state [])) =
  ('(rs, k) ← kernel_calls sample_calls (sample_state []);
   Return (rs, behind (SyscallCodec.new (ServiceId.mk 9)) (SyscallCodec.new (ServiceId.mk 9)) k)).
Proof.
  split; [eexists; vm_compute; reflexivity|].
  apply (message_calls_are_kernel_calls sample_calls (SyscallCodec.new (ServiceId.mk 9)) (SyscallCodec.new (ServiceId.mk 9)) (sample_state [])).
Defined.
End MessageCallSpec.
