(* ===== verification/Raster.v ===== *)
(** * Software rasterizer ([graphics_rasterizer])

    Rectangles, the trait [RenderTarget] with its provided drawing methods, the two pixel
    stores (an RGBA buffer and a linear framebuffer), the clipping target, and the bitmap
    font.  Coordinates are [usize]: sums and products that overflow panic, as do slices out
    of range; the saturating operations are written as such. *)

From S2P Require Import Prelude Editor.
Open Scope list_scope.
Open Scope N_scope.

(** [a..b]. *)
Definition range (a b : N) : list N := N.of_nat <$> seq (N.to_nat a) (N.to_nat (b - a)).
(** The largest size of an allocation. *)
Definition ISIZE_MAX : N := 9223372036854775807.
(** [v[i..i + bytes.len()].copy_from_slice(bytes)]. *)
Definition copy_at (i : N) (bytes v : list N) : outcome (list N) :=
  last ← add_u64 i (len bytes);
  if len v <? last then Panic
  else Return (take (N.to_nat i) v ++ bytes ++ drop (N.to_nat last) v).
(** [v[i]]. *)
Definition byte_at (v : list N) (i : N) : outcome N := expect (v !! N.to_nat i).

Module RgbaColor.
(* graphics_rasterizer/src/lib.rs:5-17 RgbaColor *)
Record t := new { r : N; g : N; b : N; a : N }.
#[global] Instance eq_dec : EqDecision t.
Proof. solve_decision. Defined.
End RgbaColor.

Module RasterRect.
(* graphics_rasterizer/src/lib.rs:19-35 RasterRect *)
Record t := new { x : N; y : N; width : N; height : N }.
#[global] Instance eq_dec : EqDecision t.
Proof. solve_decision. Defined.
(* graphics_rasterizer/src/lib.rs:37-39 RasterRect::right *)
Definition right (r : t) : outcome N := add_u64 (x r) (width r).
(* graphics_rasterizer/src/lib.rs:41-43 RasterRect::bottom *)
Definition bottom (r : t) : outcome N := add_u64 (y r) (height r).
(* graphics_rasterizer/src/lib.rs:45-47 RasterRect::is_empty *)
Definition is_empty (r : t) : bool := (width r =? 0) || (height r =? 0).
(** [&&] evaluates its right operand only when the left one holds. *)
(* graphics_rasterizer/src/lib.rs:49-51 RasterRect::contains *)
Definition contains (px py : N) (r : t) : outcome bool :=
  if px <? x r then Return false else
  right ← right r;
  if right <=? px then Return false else
  if py <? y r then Return false else
  bottom ← bottom r;
  Return (py <? bottom).
(* graphics_rasterizer/src/lib.rs:53-62 RasterRect::intersect *)
Definition intersect (r other : t) : outcome (option t) :=
  let x' := N.max (x r) (x other) in
  let y' := N.max (y r) (y other) in
  r1 ← right r; r2 ← right other;
  let right := N.min r1 r2 in
  b1 ← bottom r; b2 ← bottom other;
  let bottom := N.min b1 b2 in
  if (right <=? x') || (bottom <=? y') then Return None
  else Return (Some (new x' y' (right - x') (bottom - y'))).
End RasterRect.

(** ** Fonts *)

Module BitmapFont.
(* graphics_rasterizer/src/lib.rs:72-86 BitmapFont *)
Record t := new { glyph_width : N; glyph_height : N; advance_x : N }.
(* graphics_rasterizer/src/lib.rs:100-102 BitmapFont::measure_text *)
Definition measure_text (text : Str.t) (f : t) : outcome (N * N) :=
  w ← mul_u64 (len text) (advance_x f); Return (w, glyph_height f).
End BitmapFont.

(* graphics_rasterizer/src/lib.rs:105-105 COMPACT_FONT *)
Definition COMPACT_FONT : BitmapFont.t := BitmapFont.new 5 7 6.
(* graphics_rasterizer/src/lib.rs:106-106 DESKTOP_FONT *)
Definition DESKTOP_FONT : BitmapFont.t := BitmapFont.new 8 8 9.

(* graphics_rasterizer/src/lib.rs:426-426 SOURCE_GLYPH_WIDTH *)
Definition SOURCE_GLYPH_WIDTH : N := 5.
(* graphics_rasterizer/src/lib.rs:427-427 SOURCE_GLYPH_HEIGHT *)
Definition SOURCE_GLYPH_HEIGHT : N := 7.
(* graphics_rasterizer/src/lib.rs:428-428 MAX_GLYPH_HEIGHT *)
Definition MAX_GLYPH_HEIGHT : N := 16.

(* graphics_rasterizer/src/lib.rs:477-628 compact_glyph_for *)
Definition compact_glyph_for (ch : N) : list N :=
  match ch with
  | 65 | 97 => [4; 10; 31; 17; 17; 17; 0]
  | 66 | 98 => [30; 17; 30; 17; 17; 30; 0]
  | 67 | 99 => [14; 17; 16; 16; 17; 14; 0]
  | 68 | 100 => [28; 18; 17; 17; 18; 28; 0]
  | 69 | 101 => [31; 16; 30; 16; 16; 31; 0]
  | 70 | 102 => [31; 16; 30; 16; 16; 16; 0]
  | 71 | 103 => [14; 17; 16; 23; 17; 15; 0]
  | 72 | 104 => [17; 17; 31; 17; 17; 17; 0]
  | 73 | 105 => [31; 4; 4; 4; 4; 31; 0]
  | 74 | 106 => [7; 2; 2; 18; 18; 12; 0]
  | 75 | 107 => [17; 18; 28; 18; 17; 17; 0]
  | 76 | 108 => [16; 16; 16; 16; 16; 31; 0]
  | 77 | 109 => [17; 27; 21; 17; 17; 17; 0]
  | 78 | 110 => [17; 25; 21; 19; 17; 17; 0]
  | 79 | 111 => [14; 17; 17; 17; 17; 14; 0]
  | 80 | 112 => [30; 17; 30; 16; 16; 16; 0]
  | 81 | 113 => [14; 17; 17; 21; 18; 13; 0]
  | 82 | 114 => [30; 17; 30; 18; 17; 17; 0]
  | 83 | 115 => [15; 16; 14; 1; 1; 30; 0]
  | 84 | 116 => [31; 4; 4; 4; 4; 4; 0]
  | 85 | 117 => [17; 17; 17; 17; 17; 14; 0]
  | 86 | 118 => [17; 17; 17; 17; 10; 4; 0]
  | 87 | 119 => [17; 17; 17; 21; 27; 17; 0]
  | 88 | 120 => [17; 10; 4; 4; 10; 17; 0]
  | 89 | 121 => [17; 10; 4; 4; 4; 4; 0]
  | 90 | 122 => [31; 2; 4; 8; 16; 31; 0]
  | 48 => [14; 19; 21; 25; 17; 14; 0]
  | 49 => [4; 12; 4; 4; 4; 14; 0]
  | 50 => [14; 17; 2; 4; 8; 31; 0]
  | 51 => [30; 1; 6; 1; 17; 14; 0]
  | 52 => [2; 6; 10; 31; 2; 2; 0]
  | 53 => [31; 16; 30; 1; 17; 14; 0]
  | 54 => [6; 8; 30; 17; 17; 14; 0]
  | 55 => [31; 1; 2; 4; 8; 8; 0]
  | 56 => [14; 17; 14; 17; 17; 14; 0]
  | 57 => [14; 17; 17; 15; 2; 12; 0]
  | 91 => [14; 8; 8; 8; 8; 14; 0]
  | 93 => [14; 2; 2; 2; 2; 14; 0]
  | 40 => [2; 4; 8; 8; 4; 2; 0]
  | 41 => [8; 4; 2; 2; 4; 8; 0]
  | 43 => [0; 4; 4; 31; 4; 4; 0]
  | 45 => [0; 0; 0; 31; 0; 0; 0]
  | 35 => [10; 31; 10; 10; 31; 10; 0]
  | 58 => [0; 4; 0; 0; 4; 0; 0]
  | 64 => [14; 17; 23; 21; 23; 16; 14]
  | 46 => [0; 0; 0; 0; 4; 4; 0]
  | 63 => [14; 17; 2; 4; 0; 4; 0]
  | 33 => [4; 4; 4; 4; 0; 4; 0]
  | 32 => [0; 0; 0; 0; 0; 0; 0]
  | _ => [14; 17; 2; 4; 0; 4; 0]
  end.
#[global] Arguments compact_glyph_for : simpl never.

(** [1u16 << n], which panics from 16 on. *)
Definition bit_u16 (n : N) : outcome N := if n <? 16 then Return (N.shiftl 1 n) else Panic.

(** The inner loop of [rasterize_glyph]: one row of the scaled glyph. *)
(* graphics_rasterizer/src/lib.rs:461-469 rasterize_glyph *)
Definition rasterize_row (font : BitmapFont.t) (source_row : N) : outcome N :=
  let w := BitmapFont.glyph_width font in
  fold_outcome (λ row target_x,
    scaled ← mul_u64 target_x SOURCE_GLYPH_WIDTH;
    let source_x := scaled / w in
    shift ← sub_u64 (SOURCE_GLYPH_WIDTH - 1) source_x;
    if negb (N.land (N.shiftr source_row shift) 1 =? 0) then
      mask ← bit_u16 (w - 1 - target_x); Return (N.lor row mask)
    else Return row) (range 0 w) 0.

(* graphics_rasterizer/src/lib.rs:454-475 rasterize_glyph *)
Definition rasterize_glyph (font : BitmapFont.t) (ch : N) : outcome (list N) :=
  let source := compact_glyph_for ch in
  let h := BitmapFont.glyph_height font in
  fold_outcome (λ rows target_y,
    scaled ← mul_u64 target_y SOURCE_GLYPH_HEIGHT;
    source_row ← expect (source !! N.to_nat (scaled / h));
    row ← rasterize_row font source_row;
    if target_y <? MAX_GLYPH_HEIGHT then Return (<[N.to_nat target_y := row]> rows) else Panic)
    (range 0 h) (replicate (N.to_nat MAX_GLYPH_HEIGHT) 0).

(** ** Render targets *)

(* graphics_rasterizer/src/lib.rs:108-112 RenderTarget *)
Class RenderTarget (T : Type) := {
  target_width : T → N;
  target_height : T → N;
  write_pixel : N → N → RgbaColor.t → T → outcome T;
  pixel : N → N → T → outcome (option RgbaColor.t)
}.

Section provided_methods.
Context {T : Type} `{RenderTarget T}.

(** [for y in a..b { for x in c..d { self.write_pixel(x, y, color) } }]. *)
Definition write_block (a b c d : N) (color : RgbaColor.t) (t : T) : outcome T :=
  fold_outcome (λ t y, fold_outcome (λ t x, write_pixel x y color t) (range c d) t) (range a b) t.

(* graphics_rasterizer/src/lib.rs:114-120 RenderTarget::clear *)
Definition clear (color : RgbaColor.t) (t : T) : outcome T :=
  write_block 0 (target_height t) 0 (target_width t) color t.

(* graphics_rasterizer/src/lib.rs:122-134 RenderTarget::fill_rect *)
Definition fill_rect (rect : RasterRect.t) (color : RgbaColor.t) (t : T) : outcome T :=
  if (RasterRect.width rect =? 0) || (RasterRect.height rect =? 0) then Return t else
  let x_end := N.min (saturating_add (RasterRect.x rect) (RasterRect.width rect)) (target_width t) in
  let y_end := N.min (saturating_add (RasterRect.y rect) (RasterRect.height rect)) (target_height t) in
  write_block (N.min (RasterRect.y rect) (target_height t)) y_end
              (N.min (RasterRect.x rect) (target_width t)) x_end color t.

(* graphics_rasterizer/src/lib.rs:136-168 RenderTarget::draw_border *)
Definition draw_border (rect : RasterRect.t) (thickness : N) (color : RgbaColor.t) (t : T)
    : outcome T :=
  let '(RasterRect.new x y w h) := rect in
  if (thickness =? 0) || (w =? 0) || (h =? 0) then Return t else
  let thickness := N.min (N.min thickness w) h in
  t ← fill_rect (RasterRect.new x y w thickness) color t;
  y_last ← add_u64 y (saturating_sub h thickness);
  t ← fill_rect (RasterRect.new x y_last w thickness) color t;
  t ← fill_rect (RasterRect.new x y thickness h) color t;
  x_last ← add_u64 x (saturating_sub w thickness);
  fill_rect (RasterRect.new x_last y thickness h) color t.

(** One row of a glyph, and the rows from number [row] on; [break] ends the loop. *)
(* graphics_rasterizer/src/lib.rs:445-450 draw_glyph *)
Definition draw_glyph_row (x y : N) (w pattern : N) (color : RgbaColor.t) (t : T) : outcome T :=
  fold_outcome (λ t column,
    mask ← bit_u16 (w - 1 - column);
    if negb (N.land pattern mask =? 0) then px ← add_u64 x column; write_pixel px y color t
    else Return t) (range 0 w) t.
Fixpoint draw_glyph_rows (x y : N) (w row : N) (patterns : list N) (color : RgbaColor.t) (t : T)
    : outcome T :=
  match patterns with
  | [] => Return t
  | pattern :: patterns =>
      py ← add_u64 y row;
      if target_height t <=? py then Return t else
      t ← draw_glyph_row x py w pattern color t;
      draw_glyph_rows x y w (row + 1) patterns color t
  end.
(* graphics_rasterizer/src/lib.rs:430-452 draw_glyph *)
Definition draw_glyph (x y : N) (font : BitmapFont.t) (ch : N) (color : RgbaColor.t) (t : T)
    : outcome T :=
  glyph ← rasterize_glyph font ch;
  draw_glyph_rows x y (BitmapFont.glyph_width font) 0
    (take (N.to_nat (BitmapFont.glyph_height font)) glyph) color t.

(* graphics_rasterizer/src/lib.rs:174-190 RenderTarget::draw_text_with_font *)
Fixpoint draw_text_with_font (x y : N) (text : Str.t) (font : BitmapFont.t) (color : RgbaColor.t)
    (t : T) : outcome T :=
  match text with
  | [] => Return t
  | ch :: text =>
      t ← draw_glyph x y font ch color t;
      let cursor_x := saturating_add x (BitmapFont.advance_x font) in
      if target_width t <=? cursor_x then Return t
      else draw_text_with_font cursor_x y text font color t
  end.
(* graphics_rasterizer/src/lib.rs:170-172 RenderTarget::draw_text *)
Definition draw_text (x y : N) (text : Str.t) (color : RgbaColor.t) (t : T) : outcome T :=
  draw_text_with_font x y text DESKTOP_FONT color t.
End provided_methods.

(** ** Pixel stores *)

Module RgbaBuffer.
(* graphics_rasterizer/src/lib.rs:65-70 RgbaBuffer *)
Record t := mk { width : N; height : N; pixels : list N }.
#[global] Instance rebuild_t : Rebuild t := λ b, mk (width b) (height b) (pixels b).
Definition bytes (c : RgbaColor.t) : list N :=
  [RgbaColor.r c; RgbaColor.g c; RgbaColor.b c; RgbaColor.a c].
(** The allocation panics when it is larger than [isize::MAX]; the length is then a
    multiple of four. *)
(* graphics_rasterizer/src/lib.rs:278-289 RgbaBuffer::new *)
Definition new (width height : N) (clear : RgbaColor.t) : outcome t :=
  let n := saturating_mul (saturating_mul width height) 4 in
  if ISIZE_MAX <? n then Panic
  else Return (mk width height (concat (replicate (N.to_nat (n / 4)) (bytes clear)))).
(* graphics_rasterizer/src/lib.rs:334-340 RgbaBuffer::offset *)
Definition offset (x y : N) (b : t) : outcome (option N) :=
  if (width b <=? x) || (height b <=? y) then Return None else
  row ← mul_u64 y (width b);
  cell ← add_u64 row x;
  offset ← mul_u64 cell 4;
  Return (Some offset).
(* graphics_rasterizer/src/lib.rs:342-347 RgbaBuffer::set_pixel *)
Definition set_pixel (x y : N) (color : RgbaColor.t) (b : t) : outcome t :=
  o ← offset x y b;
  match o with
  | None => Return b
  | Some offset => v ← copy_at offset (bytes color) (pixels b); Return (b <| pixels := v |>)
  end.
(* graphics_rasterizer/src/lib.rs:363-371 RgbaBuffer::pixel *)
Definition pixel (x y : N) (b : t) : outcome (option RgbaColor.t) :=
  o ← offset x y b;
  match o with
  | None => Return None
  | Some offset =>
      r ← byte_at (pixels b) offset;
      g ← byte_at (pixels b) (offset + 1);
      bl ← byte_at (pixels b) (offset + 2);
      a ← byte_at (pixels b) (offset + 3);
      Return (Some (RgbaColor.new r g bl a))
  end.
(* graphics_rasterizer/src/lib.rs:350-372 RenderTarget for RgbaBuffer *)
#[global] Instance render_target : RenderTarget t := {|
  target_width := width;
  target_height := height;
  write_pixel := set_pixel;
  Raster.pixel := pixel
|}.
End RgbaBuffer.

Module LinearPixelFormat.
(* graphics_rasterizer/src/lib.rs:193-197 LinearPixelFormat *)
Inductive t := Rgb32 | Bgr32.
(* graphics_rasterizer/src/lib.rs:200-202 LinearPixelFormat::bytes_per_pixel *)
Definition bytes_per_pixel (f : t) : N := 4.
(* graphics_rasterizer/src/lib.rs:204-209 LinearPixelFormat::encode *)
Definition encode (color : RgbaColor.t) (f : t) : list N :=
  match f with
  | Rgb32 => [RgbaColor.b color; RgbaColor.g color; RgbaColor.r color; 0]
  | Bgr32 => [RgbaColor.r color; RgbaColor.g color; RgbaColor.b color; 0]
  end.
(** The argument is an array of four bytes. *)
(* graphics_rasterizer/src/lib.rs:211-216 LinearPixelFormat::decode *)
Definition decode (b0 b1 b2 : N) (f : t) : RgbaColor.t :=
  match f with
  | Rgb32 => RgbaColor.new b2 b1 b0 255
  | Bgr32 => RgbaColor.new b0 b1 b2 255
  end.
End LinearPixelFormat.

Module LinearFramebufferTarget.
(* graphics_rasterizer/src/lib.rs:219-225 LinearFramebufferTarget *)
Record t := mk {
  width : N;
  height : N;
  stride_pixels : N;
  format : LinearPixelFormat.t;
  buffer : list N
}.
#[global] Instance rebuild_t : Rebuild t := λ b,
  mk (width b) (height b) (stride_pixels b) (format b) (buffer b).
(* graphics_rasterizer/src/lib.rs:239-262 LinearFramebufferTarget::new *)
Definition new (width height stride_pixels : N) (format : LinearPixelFormat.t) (buffer : list N)
    : outcome t :=
  let required := saturating_mul (saturating_mul height stride_pixels)
                    (LinearPixelFormat.bytes_per_pixel format) in
  if len buffer <? required then Panic else Return (mk width height stride_pixels format buffer).
(* graphics_rasterizer/src/lib.rs:268-274 LinearFramebufferTarget::offset *)
Definition offset (x y : N) (b : t) : outcome (option N) :=
  if (width b <=? x) || (height b <=? y) then Return None else
  row ← mul_u64 y (stride_pixels b);
  cell ← add_u64 row x;
  offset ← mul_u64 cell (LinearPixelFormat.bytes_per_pixel (format b));
  Return (Some offset).
(* graphics_rasterizer/src/lib.rs:383-388 LinearFramebufferTarget::write_pixel *)
Definition set_pixel (x y : N) (color : RgbaColor.t) (b : t) : outcome t :=
  o ← offset x y b;
  match o with
  | None => Return b
  | Some offset =>
      v ← copy_at offset (LinearPixelFormat.encode color (format b)) (buffer b);
      Return (b <| buffer := v |>)
  end.
(* graphics_rasterizer/src/lib.rs:390-399 LinearFramebufferTarget::pixel *)
Definition pixel (x y : N) (b : t) : outcome (option RgbaColor.t) :=
  o ← offset x y b;
  match o with
  | None => Return None
  | Some offset =>
      b0 ← byte_at (buffer b) offset;
      b1 ← byte_at (buffer b) (offset + 1);
      b2 ← byte_at (buffer b) (offset + 2);
      _ ← byte_at (buffer b) (offset + 3);
      Return (Some (LinearPixelFormat.decode b0 b1 b2 (format b)))
  end.
(* graphics_rasterizer/src/lib.rs:374-400 RenderTarget for LinearFramebufferTarget *)
#[global] Instance render_target : RenderTarget t := {|
  target_width := width;
  target_height := height;
  write_pixel := set_pixel;
  Raster.pixel := pixel
|}.
End LinearFramebufferTarget.

(** A target that lets only the pixels of a rectangle through. *)
Module ScissorTarget.
Section scissor.
Context {T : Type} `{RenderTarget T}.
(* graphics_rasterizer/src/lib.rs:227-236 ScissorTarget *)
Record t := new { target : T; scissor : RasterRect.t }.
#[global] Instance rebuild_t : Rebuild t := λ s, new (target s) (scissor s).
(* graphics_rasterizer/src/lib.rs:402-424 RenderTarget for ScissorTarget *)
#[global] Instance render_target : RenderTarget t := {|
  target_width s := target_width (target s);
  target_height s := target_height (target s);
  write_pixel x y color s :=
    inside ← RasterRect.contains x y (scissor s);
    if (inside : bool) then t ← write_pixel x y color (target s); Return (s <| target := t |>)
    else Return s;
  pixel x y s :=
    inside ← RasterRect.contains x y (scissor s);
    if (inside : bool) then pixel x y (target s) else Return None
|}.

(** Drawing through a scissor on a borrowed target. *)
Definition within (r : RasterRect.t) (draw : t → outcome t) (x : T) : outcome T :=
  s ← draw (new x r); Return (target s).
End scissor.
Arguments t : clear implicits.
End ScissorTarget.
