(* ===== verification/RasterProps.v ===== *)
(** * Properties of the rasterizer

    Every drawing method is a fixed list of pixel writes that depends on the size of the
    target and not on its contents; a scissor is a filter on that list; and both pixel
    stores implement the abstract picture: a write changes the one pixel it names and
    nothing panics. *)

From S2P Require Import Prelude Editor Raster.
Open Scope list_scope.
Open Scope N_scope.

(** ** Rectangles as sets of points *)
Module RectSpec.
Import RasterRect.

(** The edges of the rectangle are [usize] values. *)
Definition rect_ok (r : t) : Prop := x r + width r ≤ u64_max ∧ y r + height r ≤ u64_max.

Definition inside (r : t) (px py : N) : bool :=
  (x r <=? px) && (px <? x r + width r) && (y r <=? py) && (py <? y r + height r).

Lemma inside_iff r px py :
  inside r px py = true ↔ x r ≤ px < x r + width r ∧ y r ≤ py < y r + height r.
Proof. unfold inside. rewrite !andb_true_iff, !N.leb_le, !N.ltb_lt. tauto. Qed.

Lemma right_ok r : rect_ok r → right r = Return (x r + width r).
Proof. intros [Hx _]. unfold right. by rewrite (proj2 (add_u64_Return _ _ _) (conj eq_refl Hx)). Qed.

Lemma bottom_ok r : rect_ok r → bottom r = Return (y r + height r).
Proof. intros [_ Hy]. unfold bottom. by rewrite (proj2 (add_u64_Return _ _ _) (conj eq_refl Hy)). Qed.

Lemma contains_ok r px py : rect_ok r → contains px py r = Return (inside r px py).
Proof.
  intros Hr. unfold contains, inside. rewrite (right_ok r Hr), (bottom_ok r Hr). simpl.
  destruct (N.ltb_spec px (x r)), (N.leb_spec (x r) px); try lia; simpl; [done|].
  destruct (N.leb_spec (x r + width r) px), (N.ltb_spec px (x r + width r)); try lia; simpl; [done|].
  destruct (N.ltb_spec py (y r)), (N.leb_spec (y r) py); try lia; done.
Qed.

(** [intersect] is the intersection of the two sets of points; it is [None] exactly when
    they have no point in common. *)
Theorem intersect_is_intersection r s :
  rect_ok r → rect_ok s →
  ∃ o, intersect r s = Return o ∧
    match o with
    | Some i => rect_ok i ∧ 0 < width i ∧ 0 < height i ∧
                ∀ px py, inside i px py = inside r px py && inside s px py
    | None => ∀ px py, inside r px py && inside s px py = false
    end.
Proof.
  intros Hr Hs. unfold intersect. rewrite (right_ok r Hr), (right_ok s Hs). simpl.
  rewrite (bottom_ok r Hr), (bottom_ok s Hs). simpl.
  destruct (_ || _) eqn:E.
  - exists None. split; [done|]. intros px py. apply not_true_iff_false.
    rewrite andb_true_iff, !inside_iff. apply orb_true_iff in E as [E|E]; apply N.leb_le in E; lia.
  - apply orb_false_iff in E as [E1 E2]. apply N.leb_gt in E1, E2.
    eexists. split; [done|]. destruct Hr, Hs. split_and!; [split|..]; simpl; [lia..|].
    intros px py. apply eq_true_iff_eq. rewrite andb_true_iff, !inside_iff. simpl. lia.
Qed.

Lemma intersect_is_intersection_witness :
  ∃ o, intersect (new 0 0 4 4) (new 2 2 4 4) = Return o ∧
    match o with
    | Some i => rect_ok i ∧ 0 < width i ∧ 0 < height i ∧
                ∀ px py, inside i px py = inside (new 0 0 4 4) px py && inside (new 2 2 4 4) px py
    | None => ∀ px py, inside (new 0 0 4 4) px py && inside (new 2 2 4 4) px py = false
    end.
Proof. by apply (intersect_is_intersection (new 0 0 4 4) (new 2 2 4 4)). Defined.

End RectSpec.

(** ** Ranges *)
Lemma elem_of_span i a b : i ∈ range a b ↔ a ≤ i < b.
Proof.
  unfold range. rewrite list_elem_of_fmap. setoid_rewrite elem_of_seq. split.
  - intros (n & -> & Hn). lia.
  - intros Hi. exists (N.to_nat i). lia.
Qed.

(** ** Writes *)
Module Paint.
Import RectSpec.

Record write := Write { wx : N; wy : N; wcolor : RgbaColor.t }.

Definition paint `{RenderTarget T} (ws : list write) (t : T) : outcome T :=
  fold_outcome (λ t w, write_pixel (wx w) (wy w) (wcolor w) t) ws t.

(** The colour that the last write to a pixel leaves there. *)
Definition at_pixel (x y : N) (w : write) : bool := (wx w =? x) && (wy w =? y).
Definition last_color (x y : N) (ws : list write) : option RgbaColor.t :=
  wcolor <$> rfind (at_pixel x y) ws.

(** Only the writes inside a rectangle. *)
Definition clip (r : RasterRect.t) (ws : list write) : list write :=
  filter (λ w, inside r (wx w) (wy w) = true) ws.

(** What a target promises to the drawing methods: in a good state, a write returns a
    good state of the same size. *)
Class PaintSpec (T : Type) `{RenderTarget T} := {
  target_ok : T → Prop;
  write_returns t x y c : target_ok t →
    ∃ t', write_pixel x y c t = Return t' ∧ target_ok t' ∧
      target_width t' = target_width t ∧ target_height t' = target_height t
}.

(** The writes of the drawing methods, on a target of size [w] by [h]. *)
Definition block_writes (a b c d : N) (color : RgbaColor.t) : list write :=
  range a b ≫= λ y, (λ x, Write x y color) <$> range c d.

Definition fill_writes (w h : N) (rect : RasterRect.t) (color : RgbaColor.t) : list write :=
  if (RasterRect.width rect =? 0) || (RasterRect.height rect =? 0) then [] else
  block_writes (N.min (RasterRect.y rect) h)
    (N.min (saturating_add (RasterRect.y rect) (RasterRect.height rect)) h)
    (N.min (RasterRect.x rect) w)
    (N.min (saturating_add (RasterRect.x rect) (RasterRect.width rect)) w) color.

Definition border_writes (w h : N) (rect : RasterRect.t) (thickness : N) (color : RgbaColor.t)
    : outcome (list write) :=
  let '(RasterRect.new x y rw rh) := rect in
  if (thickness =? 0) || (rw =? 0) || (rh =? 0) then Return [] else
  let thickness := N.min (N.min thickness rw) rh in
  y_last ← add_u64 y (saturating_sub rh thickness);
  x_last ← add_u64 x (saturating_sub rw thickness);
  Return (fill_writes w h (RasterRect.new x y rw thickness) color
    ++ fill_writes w h (RasterRect.new x y_last rw thickness) color
    ++ fill_writes w h (RasterRect.new x y thickness rh) color
    ++ fill_writes w h (RasterRect.new x_last y thickness rh) color).

Definition glyph_row_writes (x y w pattern : N) (color : RgbaColor.t) : outcome (list write) :=
  fold_outcome (λ ws column,
    mask ← bit_u16 (w - 1 - column);
    if negb (N.land pattern mask =? 0) then px ← add_u64 x column; Return (ws ++ [Write px y color])
    else Return ws) (range 0 w) [].

Fixpoint glyph_rows_writes (h x y w row : N) (patterns : list N) (color : RgbaColor.t)
    : outcome (list write) :=
  match patterns with
  | [] => Return []
  | pattern :: patterns =>
      py ← add_u64 y row;
      if h <=? py then Return [] else
      ws ← glyph_row_writes x py w pattern color;
      ws' ← glyph_rows_writes h x y w (row + 1) patterns color;
      Return (ws ++ ws')
  end.

Definition glyph_writes (h x y : N) (font : BitmapFont.t) (ch : N) (color : RgbaColor.t)
    : outcome (list write) :=
  glyph ← rasterize_glyph font ch;
  glyph_rows_writes h x y (BitmapFont.glyph_width font) 0
    (take (N.to_nat (BitmapFont.glyph_height font)) glyph) color.

Fixpoint text_writes (w h x y : N) (text : Str.t) (font : BitmapFont.t) (color : RgbaColor.t)
    : outcome (list write) :=
  match text with
  | [] => Return []
  | ch :: text =>
      ws ← glyph_writes h x y font ch color;
      let cursor_x := saturating_add x (BitmapFont.advance_x font) in
      if w <=? cursor_x then Return ws
      else ws' ← text_writes w h cursor_x y text font color; Return (ws ++ ws')
  end.

Section paint.
Context `{PaintSpec T}.
Implicit Types t : T.

(** Painting in a good state, and computing on with the result. *)
Lemma paint_returns ws t :
  target_ok t → ∃ t', paint ws t = Return t' ∧ target_ok t' ∧
    target_width t' = target_width t ∧ target_height t' = target_height t.
Proof.
  intros Ht. apply (fold_outcome_returns (λ t', target_ok t' ∧
    target_width t' = target_width t ∧ target_height t' = target_height t)); [done|].
  intros t1 [x y c] _ (H1 & Hw & Hh). simpl.
  destruct (write_returns t1 x y c H1) as (t2 & -> & ? & ? & ?). exists t2. split_and!; congruence.
Qed.

Lemma paint_app ws ws' t : paint (ws ++ ws') t = paint ws t ≫= paint ws'.
Proof. apply fold_outcome_app. Qed.

(** Painting what a computation produces; a panic of the computation is a panic. *)
Definition paint_outcome (m : outcome (list write)) (t : T) : outcome T := ws ← m; paint ws t.

Lemma paint_outcome_Return ws t : paint_outcome (Return ws) t = paint ws t.
Proof. done. Qed.

(** A computation that both sides start with. *)
Lemma paint_outcome_bind {A} (m : outcome A) (f : A → outcome T) (g : A → outcome (list write)) t :
  (∀ a, f a = paint_outcome (g a) t) → (m ≫= f) = paint_outcome (m ≫= g) t.
Proof. intros E. destruct m; simpl; [apply E|done..]. Qed.

(** A sequence of drawing steps is the concatenation of their writes. *)
Lemma paint_then ws m t (f : T → outcome T) :
  target_ok t →
  (∀ t', target_ok t' → target_width t' = target_width t → target_height t' = target_height t →
     f t' = paint_outcome m t') →
  paint ws t ≫= f = paint_outcome (ws' ← m; Return (ws ++ ws')) t.
Proof.
  intros Ht Hf. destruct (paint_returns ws t Ht) as (t' & E & ? & ? & ?). rewrite E. simpl.
  rewrite Hf by done. destruct m as [ws'| |]; simpl; [|done..].
  rewrite paint_app, E. done.
Qed.

Lemma write_block_paint a b c d color t :
  write_block a b c d color t = paint (block_writes a b c d color) t.
Proof.
  unfold write_block, block_writes, paint. generalize (range a b) as ys. intros ys. revert t.
  induction ys as [|y ys IH]; intros t; [done|].
  rewrite bind_cons, fold_outcome_app. simpl.
  assert (∀ xs t, fold_outcome (λ t x, write_pixel x y color t) xs t
    = fold_outcome (λ t w, write_pixel (wx w) (wy w) (wcolor w) t) ((λ x, Write x y color) <$> xs) t)
    as Hrow.
  { induction xs as [|x xs IHx]; intros t1; simpl; [done|]. destruct (write_pixel x y color t1); simpl; auto. }
  rewrite Hrow. destruct (fold_outcome _ (_ <$> _) t); simpl; [apply IH|done..].
Qed.

Lemma fill_rect_paint rect color t :
  fill_rect rect color t = paint (fill_writes (target_width t) (target_height t) rect color) t.
Proof. unfold fill_rect, fill_writes. destruct (_ || _); [done|]. apply write_block_paint. Qed.

Lemma clear_paint color t :
  clear color t = paint (block_writes 0 (target_height t) 0 (target_width t) color) t.
Proof. apply write_block_paint. Qed.

Lemma draw_border_paint rect thickness color t :
  target_ok t →
  draw_border rect thickness color t
  = paint_outcome (border_writes (target_width t) (target_height t) rect thickness color) t.
Proof.
  intros Ht. destruct rect as [x y w h]. unfold draw_border, border_writes.
  destruct (_ || _); [done|]. set (th := N.min (N.min thickness w) h).
  rewrite fill_rect_paint.
  destruct (paint_returns (fill_writes (target_width t) (target_height t)
    (RasterRect.new x y w th) color) t Ht) as (t1 & E1 & H1 & W1 & G1). rewrite E1. simpl.
  destruct (add_u64 y _) as [yl| |]; simpl; [|done..].
  rewrite fill_rect_paint, W1, G1.
  destruct (paint_returns (fill_writes (target_width t) (target_height t)
    (RasterRect.new x yl w th) color) t1 H1) as (t2 & E2 & H2 & W2 & G2). rewrite E2. simpl.
  rewrite fill_rect_paint, W2, W1, G2, G1.
  destruct (paint_returns (fill_writes (target_width t) (target_height t)
    (RasterRect.new x y th h) color) t2 H2) as (t3 & E3 & H3 & W3 & G3). rewrite E3. simpl.
  destruct (add_u64 x _) as [xl| |]; simpl; [|done..].
  rewrite fill_rect_paint, W3, W2, W1, G3, G2, G1.
  rewrite !paint_app, E1. simpl. rewrite paint_app, E2. simpl. by rewrite paint_app, E3.
Qed.

Lemma draw_glyph_row_paint x y w pattern color t :
  target_ok t →
  draw_glyph_row x y w pattern color t = paint_outcome (glyph_row_writes x y w pattern color) t.
Proof.
  intros Ht. unfold draw_glyph_row, glyph_row_writes.
  assert (∀ cols ws0 t1, paint ws0 t = Return t1 → target_ok t1 →
    fold_outcome (λ t column,
      mask ← bit_u16 (w - 1 - column);
      if negb (N.land pattern mask =? 0) then px ← add_u64 x column; write_pixel px y color t
      else Return t) cols t1
    = paint_outcome (fold_outcome (λ ws column,
        mask ← bit_u16 (w - 1 - column);
        if negb (N.land pattern mask =? 0)
        then px ← add_u64 x column; Return (ws ++ [Write px y color])
        else Return ws) cols ws0) t) as Hg; [|by apply Hg].
  induction cols as [|c cols IH]; intros ws0 t1 E H1; simpl; [done|].
  destruct (bit_u16 (w - 1 - c)) as [mask| |]; simpl; [|done..].
  destruct (negb _); simpl; [|by apply IH].
  destruct (add_u64 x c) as [px| |]; simpl; [|done..].
  destruct (write_returns t1 px y color H1) as (t2 & E2 & H2 & _). rewrite E2. simpl.
  apply IH; [|done]. rewrite paint_app, E. unfold paint. simpl. by rewrite E2.
Qed.

Lemma draw_glyph_rows_paint x y w patterns color row t :
  target_ok t →
  draw_glyph_rows x y w row patterns color t
  = paint_outcome (glyph_rows_writes (target_height t) x y w row patterns color) t.
Proof.
  revert row t. induction patterns as [|p ps IH]; intros row t Ht; simpl; [done|].
  destruct (add_u64 y row) as [py| |]; simpl; [|done..].
  destruct (target_height t <=? py); [done|]. rewrite draw_glyph_row_paint by done.
  destruct (glyph_row_writes x py w p color) as [ws| |]; simpl; [|done..].
  rewrite (paint_then ws (glyph_rows_writes (target_height t) x y w (row + 1) ps color)); [done..|].
  intros t' Ht' _ Hh. rewrite IH by done. by rewrite Hh.
Qed.

Lemma draw_glyph_paint x y font ch color t :
  target_ok t →
  draw_glyph x y font ch color t = paint_outcome (glyph_writes (target_height t) x y font ch color) t.
Proof.
  intros Ht. unfold draw_glyph, glyph_writes. destruct (rasterize_glyph font ch); simpl; [|done..].
  by apply draw_glyph_rows_paint.
Qed.

Lemma draw_text_paint x y text font color t :
  target_ok t →
  draw_text_with_font x y text font color t
  = paint_outcome (text_writes (target_width t) (target_height t) x y text font color) t.
Proof.
  revert x t. induction text as [|ch text IH]; intros x t Ht; simpl; [done|].
  rewrite draw_glyph_paint by done.
  destruct (glyph_writes _ x y font ch color) as [ws| |]; simpl; [|done..].
  set (cx := saturating_add x (BitmapFont.advance_x font)).
  transitivity (paint_outcome (ws' ← (if target_width t <=? cx then Return [] else
    text_writes (target_width t) (target_height t) cx y text font color); Return (ws ++ ws')) t).
  - apply (paint_then ws); [done|]. intros t' Ht' Hw Hh. rewrite Hw.
    destruct (target_width t <=? cx); [done|]. rewrite IH by done. by rewrite Hw, Hh.
  - destruct (target_width t <=? cx); simpl; [by rewrite app_nil_r|done].
Qed.

(** A scissor is a filter on the writes. *)
Lemma scissor_paint r ws t :
  rect_ok r →
  paint ws (ScissorTarget.new t r) = t' ← paint (clip r ws) t; Return (ScissorTarget.new t' r).
Proof.
  intros Hr. revert t. induction ws as [|[x y c] ws IH]; intros t; [done|].
  assert (∀ ws, paint (Write x y c :: ws) (ScissorTarget.new t r)
    = (s ← write_pixel x y c (ScissorTarget.new t r); paint ws s)) as -> by done.
  unfold clip. rewrite filter_cons. fold (clip r ws).
  cbn [write_pixel ScissorTarget.render_target ScissorTarget.scissor wx wy].
  rewrite contains_ok by done. cbn [mbind outcome_bind].
  destruct (inside r x y) eqn:Ei.
  - rewrite decide_True by done.
    assert (∀ ws, paint (Write x y c :: ws) t = (s ← write_pixel x y c t; paint ws s)) as -> by done.
    cbn [ScissorTarget.target]. destruct (write_pixel x y c t) as [t1| |]; [|done..]. apply IH.
  - rewrite decide_False by done. apply IH.
Qed.

#[global] Program Instance scissor_spec : PaintSpec (ScissorTarget.t T) := {|
  target_ok s := target_ok (ScissorTarget.target s) ∧ rect_ok (ScissorTarget.scissor s)
|}.
Next Obligation.
  intros [t r] x y c [Ht Hr]. cbn [write_pixel ScissorTarget.render_target ScissorTarget.scissor].
  rewrite contains_ok by done. cbn [mbind outcome_bind]. destruct (inside r x y).
  - destruct (write_returns t x y c Ht) as (t' & E & ? & ? & ?). simpl. rewrite E. simpl.
    eexists. split; [done|]. simpl. done.
  - eexists. split; [done|]. done.
Qed.

(** Drawing through a scissor: the clipped writes. *)
Lemma within_paint r m (draw : ScissorTarget.t T → outcome (ScissorTarget.t T)) t :
  rect_ok r →
  draw (ScissorTarget.new t r) = (ws ← m; paint ws (ScissorTarget.new t r)) →
  ScissorTarget.within r draw t = paint_outcome (ws ← m; Return (clip r ws)) t.
Proof.
  intros Hr E. unfold ScissorTarget.within. rewrite E. destruct m as [ws| |]; simpl; [|done..].
  rewrite scissor_paint by done. by destruct (paint (clip r ws) t).
Qed.
End paint.

(** ** Pictures *)

(** A pixel store: reading shows the last colour written, as the format can show it. *)
Class PictureSpec (T : Type) `{PaintSpec T} := {
  shown : T → RgbaColor.t → RgbaColor.t;
  picture : T → N → N → option RgbaColor.t;
  pixel_picture t x y : target_ok t → pixel x y t = Return (picture t x y);
  picture_bounds t x y : target_ok t →
    (is_Some (picture t x y) ↔ x < target_width t ∧ y < target_height t);
  write_picture t x y c t' : target_ok t → write_pixel x y c t = Return t' →
    (∀ d, shown t' d = shown t d) ∧
    ∀ x' y', picture t' x' y' =
      if at_pixel x' y' (Write x y c) && bool_decide (is_Some (picture t x y))
      then Some (shown t c) else picture t x' y'
}.

Section picture.
Context `{PictureSpec T}.
Implicit Types t : T.

(** After painting, a pixel of the target shows the last colour written to it, and is as
    it was if there is none. *)
Lemma paint_picture ws t t' :
  target_ok t → paint ws t = Return t' →
  (∀ d, shown t' d = shown t d) ∧
  ∀ x y, picture t' x y =
    if bool_decide (is_Some (picture t x y))
    then match last_color x y ws with Some c => Some (shown t c) | None => picture t x y end
    else None.
Proof.
  intros Ht. induction ws as [|[x0 y0 c0] ws IH] using rev_ind in t' |- *.
  - intros [= ->]. split; [done|]. intros x y. case_bool_decide; [done|].
    by apply eq_None_not_Some.
  - rewrite paint_app. intros (t1 & E1 & E2)%bind_Return. unfold paint in E2. simpl in E2.
    apply bind_Return in E2 as (t2 & E2 & [= ->]).
    destruct (paint_returns ws t Ht) as (t1' & E1' & Hk & W1 & G1). rewrite E1 in E1'. injection E1' as <-.
    destruct (IH t1 E1) as [Hs Hp]. destruct (write_picture t1 x0 y0 c0 t' Hk E2) as [Hs2 Hp2].
    split; [intros d; by rewrite Hs2|]. intros x y. rewrite Hp2. unfold last_color.
    rewrite rfind_snoc. destruct (at_pixel x y (Write x0 y0 c0)) eqn:Ea; simpl; [|apply Hp].
    apply andb_true_iff in Ea as [Ex%N.eqb_eq Ey%N.eqb_eq]. simpl in Ex, Ey. subst x0 y0.
    rewrite Hs. assert (is_Some (picture t1 x y) ↔ is_Some (picture t x y)) as Hi.
    { rewrite !picture_bounds by done. by rewrite W1, G1. }
    destruct (bool_decide (is_Some (picture t x y))) eqn:Eb.
    + apply bool_decide_eq_true in Eb. by rewrite bool_decide_eq_true_2 by by apply Hi.
    + apply bool_decide_eq_false in Eb. rewrite bool_decide_eq_false_2 by by rewrite Hi.
      apply eq_None_not_Some. by rewrite Hi.
Qed.
End picture.

Lemma last_color_app x y ws ws' :
  last_color x y (ws ++ ws') =
  match last_color x y ws' with Some c => Some c | None => last_color x y ws end.
Proof.
  induction ws' as [|w ws' IH] using rev_ind; [by rewrite app_nil_r|].
  rewrite app_assoc. unfold last_color in *. rewrite !rfind_snoc. by destruct (at_pixel x y w).
Qed.

Lemma last_color_clip x y r ws :
  last_color x y (clip r ws) = if inside r x y then last_color x y ws else None.
Proof.
  induction ws as [|[x0 y0 c0] ws IH] using rev_ind; [by destruct (inside r x y)|].
  unfold clip. rewrite filter_app, filter_cons, filter_nil. fold (clip r ws).
  rewrite (last_color_app x y ws). change (last_color x y [Write x0 y0 c0]) with
    (wcolor <$> rfind (at_pixel x y) ([] ++ [Write x0 y0 c0])). rewrite rfind_snoc.
  destruct (at_pixel x y (Write x0 y0 c0)) eqn:Ea.
  - apply andb_true_iff in Ea as [Ex%N.eqb_eq Ey%N.eqb_eq]. simpl in Ex, Ey. subst x0 y0.
    simpl. destruct (inside r x y) eqn:Ei.
    + rewrite decide_True by done. rewrite last_color_app. unfold last_color at 1, at_pixel.
      change [Write x y c0] with ([] ++ [Write x y c0]). rewrite rfind_snoc. simpl.
      by rewrite !N.eqb_refl.
    + rewrite decide_False by done. by rewrite app_nil_r, IH.
  - case_decide as Ei; [|rewrite app_nil_r, IH; by destruct (inside r x y)].
    rewrite last_color_app. change (last_color x y [Write x0 y0 c0]) with
      (wcolor <$> rfind (at_pixel x y) ([] ++ [Write x0 y0 c0])). rewrite rfind_snoc, Ea. simpl. exact IH.
Qed.

Lemma last_color_block x y a b c d color :
  last_color x y (block_writes a b c d color) =
  if (a <=? y) && (y <? b) && (c <=? x) && (x <? d) then Some color else None.
Proof.
  destruct (_ && _) eqn:E.
  - rewrite !andb_true_iff, !N.leb_le, !N.ltb_lt in E.
    assert (∃ w, w ∈ block_writes a b c d color ∧ at_pixel x y w = true) as (w & Hw & Ha).
    { exists (Write x y color). unfold block_writes, at_pixel. rewrite list_elem_of_bind. split.
      - exists y. rewrite elem_of_span. split; [|lia]. apply list_elem_of_fmap. exists x.
        rewrite elem_of_span. split; [done|lia].
      - simpl. by rewrite !N.eqb_refl. }
    unfold last_color, rfind.
    assert (w ∈ filter (λ a, at_pixel x y a = true) (reverse (block_writes a b c d color))) as Hf
      by (by rewrite list_elem_of_filter, elem_of_reverse).
    destruct (filter _ _) as [|v l] eqn:Ef; [by apply elem_of_nil in Hf|]. simpl.
    assert (v ∈ block_writes a b c d color) as Hv.
    { apply elem_of_reverse. eapply list_elem_of_filter. rewrite Ef. by left. }
    unfold block_writes in Hv. apply list_elem_of_bind in Hv as (y' & Hv & _).
    by apply list_elem_of_fmap in Hv as (x' & -> & _).
  - unfold last_color, rfind. destruct (filter _ _) as [|v l] eqn:Ef; [done|]. exfalso.
    assert (at_pixel x y v = true ∧ v ∈ block_writes a b c d color) as [Ha Hv].
    { rewrite <- elem_of_reverse.
      apply (list_elem_of_filter (λ w, at_pixel x y w = true)). rewrite Ef. by left. }
    unfold block_writes in Hv. apply list_elem_of_bind in Hv as (y' & Hv & Hy).
    apply list_elem_of_fmap in Hv as (x' & -> & Hx). rewrite elem_of_span in Hx, Hy.
    apply andb_true_iff in Ha as [Ex%N.eqb_eq Ey%N.eqb_eq]. simpl in Ex, Ey. subst.
    apply not_true_iff_false in E. apply E.
    rewrite !andb_true_iff, !N.leb_le, !N.ltb_lt. lia.
Qed.
End Paint.

(** ** The pixel stores *)
Module StoreSpec.
Import Paint.

(** The four bytes of cell [i]. *)
Definition cell_bytes (v : list N) (i : N) : list N := take 4 (drop (4 * N.to_nat i) v).

Lemma cell_lookup v i k : (k < 4)%nat → cell_bytes v i !! k = v !! (4 * N.to_nat i + k)%nat.
Proof. intros Hk. unfold cell_bytes. by rewrite lookup_take_lt, lookup_drop by done. Qed.

(** A cell in range is four bytes. *)
Lemma cell_four v i : 4 * i + 4 ≤ len v → ∃ a b c d, cell_bytes v i = [a; b; c; d].
Proof.
  unfold len. intros Hi. assert (length (cell_bytes v i) = 4%nat) as Hl.
  { unfold cell_bytes. rewrite length_take, length_drop. lia. }
  destruct (cell_bytes v i) as [|a [|b [|c [|d [|]]]]]; try done. by exists a, b, c, d.
Qed.

Lemma byte_at_cell v i k a :
  cell_bytes v i !! N.to_nat k = Some a → k < 4 → byte_at v (i * 4 + k) = Return a.
Proof.
  intros Ha Hk. unfold byte_at. replace (N.to_nat (i * 4 + k)) with (4 * N.to_nat i + N.to_nat k)%nat by lia.
  rewrite <- cell_lookup by lia. by rewrite Ha.
Qed.

(** Writing a cell changes that cell only. *)
Lemma copy_cell v i bytes :
  length bytes = 4%nat → 4 * i + 4 ≤ len v → len v ≤ ISIZE_MAX →
  ∃ v', copy_at (i * 4) bytes v = Return v' ∧ len v' = len v ∧
    ∀ j, cell_bytes v' j = if bool_decide (j = i) then bytes else cell_bytes v j.
Proof.
  unfold len, ISIZE_MAX. intros Hb Hi Hv. unfold copy_at, len. rewrite Hb. change (N.of_nat 4) with 4.
  unfold add_u64, checked_add, u64_max. rewrite (proj2 (N.leb_le _ _)) by lia. simpl.
  destruct (N.ltb_spec (N.of_nat (length v)) (i * 4 + 4)); [lia|].
  set (p := N.to_nat (i * 4)). set (q := N.to_nat (i * 4 + 4)).
  assert (length (take p v) = p) as Hp by (rewrite length_take; lia).
  eexists. split; [done|]. split.
  - rewrite !length_app, length_drop, Hp, Hb. lia.
  - intros j. case_bool_decide as Hj.
    + subst j. unfold cell_bytes. rewrite drop_app_length' by lia.
      by rewrite take_app_length' by by rewrite Hb.
    + apply list_eq. intros k. destruct (decide (k < 4)%nat) as [Hk|Hk].
      2:{ unfold cell_bytes. rewrite !lookup_take_ge by lia. done. }
      rewrite !cell_lookup by done. set (m := (4 * N.to_nat j + k)%nat).
      destruct (decide (m < p)%nat) as [Hm|Hm].
      * rewrite lookup_app_l by lia. by rewrite lookup_take_lt.
      * rewrite lookup_app_r, Hp by lia. rewrite lookup_app_r by lia.
        rewrite lookup_drop, Hb. f_equal. lia.
Qed.

(** The geometry that the two stores share: [stride] cells per row. *)
Record geometry (w h stride : N) (v : list N) : Prop := {
  geo_row : w ≤ stride;
  geo_len : h * stride * 4 ≤ len v;
  geo_max : len v ≤ ISIZE_MAX
}.

Definition cell_of (stride x y : N) : N := y * stride + x.

Lemma cell_in_range w h stride v x y :
  geometry w h stride v → x < w → y < h → 4 * cell_of stride x y + 4 ≤ len v.
Proof.
  intros [] ? ?. unfold cell_of. pose proof (N.mul_le_mono_r (y + 1) h stride ltac:(lia)). lia.
Qed.

Lemma cell_inj w h stride v x y x' y' :
  geometry w h stride v → x < w → x' < w → cell_of stride x y = cell_of stride x' y' → x = x' ∧ y = y'.
Proof.
  intros [] ? ? E. unfold cell_of in E.
  destruct (N.div_mod_unique stride y y' x x') as [-> ->]; [lia..|done].
Qed.

(** The offset of a pixel. *)
Lemma offset_computes w h stride v x y :
  geometry w h stride v → x < w → y < h →
  (row ← mul_u64 y stride; cell ← add_u64 row x; offset ← mul_u64 cell 4; Return (Some offset))
  = Return (Some (cell_of stride x y * 4)).
Proof.
  intros Hg Hx Hy. pose proof (cell_in_range w h stride v x y Hg Hx Hy) as Hc.
  destruct Hg as [_ _ Hm]. unfold ISIZE_MAX in Hm. unfold cell_of in *.
  unfold mul_u64, add_u64, checked_add, u64_max.
  do 3 (rewrite (proj2 (N.leb_le _ _)) by lia; simpl). done.
Qed.

Lemma geometry_len w h stride v v' : len v' = len v → geometry w h stride v → geometry w h stride v'.
Proof. intros E []. split; by rewrite ?E. Qed.

Definition in_size (w h x y : N) : bool := (x <? w) && (y <? h).

Lemma in_size_iff w h x y : in_size w h x y = true ↔ x < w ∧ y < h.
Proof. unfold in_size. by rewrite andb_true_iff, !N.ltb_lt. Qed.

Lemma size_check w h x y : (w <=? x) || (h <=? y) = negb (in_size w h x y).
Proof.
  unfold in_size. destruct (N.leb_spec w x), (N.ltb_spec x w), (N.leb_spec h y), (N.ltb_spec y h);
    try lia; done.
Qed.

(** A store as a picture, for a way to read a colour from its bytes. *)
Section store.
Context (w h stride : N) (dec : N → N → N → N → RgbaColor.t).

Definition dec_cell (l : list N) : option RgbaColor.t :=
  match l with [b0; b1; b2; b3] => Some (dec b0 b1 b2 b3) | _ => None end.
Definition store_picture (v : list N) (x y : N) : option RgbaColor.t :=
  if in_size w h x y then dec_cell (cell_bytes v (cell_of stride x y)) else None.
Definition store_set (x y : N) (bytes v : list N) : outcome (list N) :=
  if in_size w h x y then copy_at (cell_of stride x y * 4) bytes v else Return v.

Lemma store_bounds v x y :
  geometry w h stride v → is_Some (store_picture v x y) ↔ x < w ∧ y < h.
Proof.
  intros Hg. unfold store_picture. rewrite <- in_size_iff. destruct (in_size w h x y) eqn:E.
  - apply in_size_iff in E as [Hx Hy]. split; [done|]. intros _.
    destruct (cell_four v (cell_of stride x y)) as (? & ? & ? & ? & ->); [by eapply cell_in_range|].
    by eexists.
  - split; [by intros [? ?]|done].
Qed.

Lemma store_set_spec v x y bytes :
  geometry w h stride v → length bytes = 4%nat →
  ∃ v', store_set x y bytes v = Return v' ∧ geometry w h stride v' ∧
    ∀ x' y', store_picture v' x' y' =
      if (x =? x') && (y =? y') && bool_decide (is_Some (store_picture v x y))
      then dec_cell bytes else store_picture v x' y'.
Proof.
  intros Hg Hb. rewrite (bool_decide_ext _ _ (store_bounds v x y Hg)).
  unfold store_set. destruct (in_size w h x y) eqn:E.
  - apply in_size_iff in E as [Hx Hy].
    destruct (copy_cell v (cell_of stride x y) bytes) as (v' & -> & Hl & Hc);
      [done|by eapply cell_in_range|by destruct Hg|].
    exists v'. split_and!; [done|by eapply geometry_len|]. intros x' y'.
    rewrite bool_decide_eq_true_2, andb_true_r by done. unfold store_picture. rewrite Hc.
    destruct (in_size w h x' y') eqn:E'.
    + apply in_size_iff in E' as [Hx' Hy'].
      destruct (N.eqb_spec x x') as [<-|Hnx]; [destruct (N.eqb_spec y y') as [<-|Hny]|]; simpl;
        [by rewrite bool_decide_eq_true_2| |];
        (rewrite bool_decide_eq_false_2; [done|]);
        intros He; destruct (cell_inj _ _ _ _ _ _ _ _ Hg Hx' Hx He); congruence.
    + destruct (N.eqb_spec x x') as [<-|]; [destruct (N.eqb_spec y y') as [<-|]|]; try done.
      assert (in_size w h x y = true) by by apply in_size_iff. congruence.
  - exists v. split_and!; [done..|]. intros x' y'. rewrite bool_decide_eq_false_2, andb_false_r; [done|].
    intros Hs%in_size_iff. congruence.
Qed.

(** Reading the four bytes of a pixel. *)
Lemma store_get v x y {A} (k : N → N → N → N → outcome A) :
  geometry w h stride v → x < w → y < h →
  let o := cell_of stride x y * 4 in
  ∃ b0 b1 b2 b3, cell_bytes v (cell_of stride x y) = [b0; b1; b2; b3] ∧
    (c0 ← byte_at v o; c1 ← byte_at v (o + 1); c2 ← byte_at v (o + 2); c3 ← byte_at v (o + 3);
     k c0 c1 c2 c3) = k b0 b1 b2 b3.
Proof.
  intros Hg Hx Hy o. destruct (cell_four v (cell_of stride x y)) as (b0 & b1 & b2 & b3 & Ec).
  { by eapply cell_in_range. }
  exists b0, b1, b2, b3. split; [done|].
  pose proof (byte_at_cell v (cell_of stride x y)) as Hat. rewrite Ec in Hat.
  rewrite <- (N.add_0_r o) at 1. unfold o.
  by rewrite (Hat 0 b0), (Hat 1 b1), (Hat 2 b2), (Hat 3 b3) by done.
Qed.
End store.

(** *** The RGBA buffer *)
Definition buffer_ok (b : RgbaBuffer.t) : Prop :=
  geometry (RgbaBuffer.width b) (RgbaBuffer.height b) (RgbaBuffer.width b) (RgbaBuffer.pixels b).
Definition buffer_picture (b : RgbaBuffer.t) : N → N → option RgbaColor.t :=
  store_picture (RgbaBuffer.width b) (RgbaBuffer.height b) (RgbaBuffer.width b) RgbaColor.new
    (RgbaBuffer.pixels b).

Lemma buffer_offset b x y :
  buffer_ok b → RgbaBuffer.offset x y b = Return
    (if in_size (RgbaBuffer.width b) (RgbaBuffer.height b) x y
     then Some (cell_of (RgbaBuffer.width b) x y * 4) else None).
Proof.
  intros Hb. unfold RgbaBuffer.offset. rewrite size_check.
  destruct (in_size _ _ x y) eqn:E; simpl; [|done]. apply in_size_iff in E as [Hx Hy].
  by apply (offset_computes _ _ _ _ x y Hb).
Qed.

Lemma buffer_write b x y c :
  buffer_ok b →
  ∃ v, RgbaBuffer.set_pixel x y c b = Return (b <| RgbaBuffer.pixels := v |>) ∧
    store_set (RgbaBuffer.width b) (RgbaBuffer.height b) (RgbaBuffer.width b) x y
      (RgbaBuffer.bytes c) (RgbaBuffer.pixels b) = Return v.
Proof.
  intros Hb. destruct (store_set_spec (RgbaBuffer.width b) (RgbaBuffer.height b) (RgbaBuffer.width b)
    RgbaColor.new (RgbaBuffer.pixels b) x y (RgbaBuffer.bytes c)) as (v & E & _); [done..|].
  exists v. split; [|done]. unfold RgbaBuffer.set_pixel. rewrite buffer_offset by done. simpl.
  unfold store_set in E. destruct (in_size _ _ x y); simpl; [by rewrite E|].
  injection E as <-. by destruct b.
Qed.

#[global] Program Instance rgba_paint : PaintSpec RgbaBuffer.t := {| target_ok := buffer_ok |}.
Next Obligation.
  intros b x y c Hb. destruct (buffer_write b x y c Hb) as (v & E & Ev). eexists. split; [done|].
  destruct (store_set_spec _ _ _ RgbaColor.new _ x y (RgbaBuffer.bytes c) Hb) as (v' & Ev' & Hg & _);
    [done|]. rewrite Ev in Ev'. by injection Ev' as <-.
Qed.

#[global] Program Instance rgba_picture : PictureSpec RgbaBuffer.t := {|
  shown _ c := c;
  picture := buffer_picture
|}.
Next Obligation.
  intros b x y Hb. cbn [pixel RgbaBuffer.render_target]. unfold RgbaBuffer.pixel.
  rewrite buffer_offset by done. simpl. unfold buffer_picture, store_picture.
  destruct (in_size _ _ x y) eqn:E; [|done]. apply in_size_iff in E as [Hx Hy].
  edestruct (store_get _ _ _ _ x y (λ r g bl a, Return (Some (RgbaColor.new r g bl a))) Hb Hx Hy)
    as (b0 & b1 & b2 & b3 & -> & ->). done.
Qed.
Next Obligation. intros b x y Hb. by apply store_bounds. Qed.
Next Obligation.
  intros b x y c b' Hb E. destruct (buffer_write b x y c Hb) as (v & E1 & Ev).
  cbn [write_pixel RgbaBuffer.render_target] in E. rewrite E in E1. injection E1 as ->.
  split; [done|]. intros x' y'.
  destruct (store_set_spec _ _ _ RgbaColor.new _ x y (RgbaBuffer.bytes c) Hb) as (v' & Ev' & _ & Hp);
    [done|]. rewrite Ev in Ev'. injection Ev' as <-. unfold buffer_picture. simpl. rewrite Hp.
  by destruct c.
Qed.

(** A new buffer is a good state and shows its clear colour everywhere. *)
Lemma new_buffer_ok w h c b :
  RgbaBuffer.new w h c = Return b → buffer_ok b.
Proof.
  unfold RgbaBuffer.new, saturating_mul, u64_max, ISIZE_MAX.
  destruct (N.ltb_spec 9223372036854775807 (N.min (N.min (w * h) 18446744073709551615 * 4)
    18446744073709551615)) as [|Hn]; [done|]. intros [= <-].
  assert (N.min (N.min (w * h) 18446744073709551615 * 4) 18446744073709551615 = w * h * 4) as E by lia.
  rewrite E in *. rewrite N.div_mul by done.
  assert (∀ n, len (concat (replicate n (RgbaBuffer.bytes c))) = N.of_nat n * 4) as Hl.
  { intros n. unfold len. induction n as [|n IH]; [done|]. simpl length. lia. }
  split; simpl; [done| |]; rewrite Hl, N2Nat.id; [|unfold ISIZE_MAX; lia].
  by rewrite (N.mul_comm h w).
Qed.

(** *** The linear framebuffer *)
Definition framebuffer_ok (b : LinearFramebufferTarget.t) : Prop :=
  geometry (LinearFramebufferTarget.width b) (LinearFramebufferTarget.height b)
    (LinearFramebufferTarget.stride_pixels b) (LinearFramebufferTarget.buffer b).
Definition format_dec (f : LinearPixelFormat.t) (b0 b1 b2 _ : N) : RgbaColor.t :=
  LinearPixelFormat.decode b0 b1 b2 f.
Definition framebuffer_picture (b : LinearFramebufferTarget.t) : N → N → option RgbaColor.t :=
  store_picture (LinearFramebufferTarget.width b) (LinearFramebufferTarget.height b)
    (LinearFramebufferTarget.stride_pixels b) (format_dec (LinearFramebufferTarget.format b))
    (LinearFramebufferTarget.buffer b).

Lemma framebuffer_offset b x y :
  framebuffer_ok b → LinearFramebufferTarget.offset x y b = Return
    (if in_size (LinearFramebufferTarget.width b) (LinearFramebufferTarget.height b) x y
     then Some (cell_of (LinearFramebufferTarget.stride_pixels b) x y * 4) else None).
Proof.
  intros Hb. unfold LinearFramebufferTarget.offset. rewrite size_check.
  destruct (in_size _ _ x y) eqn:E; simpl; [|done]. apply in_size_iff in E as [Hx Hy].
  by apply (offset_computes _ _ _ _ x y Hb).
Qed.

Lemma encode_length c f : length (LinearPixelFormat.encode c f) = 4%nat.
Proof. by destruct f. Qed.

Lemma framebuffer_write b x y c :
  framebuffer_ok b →
  ∃ v, LinearFramebufferTarget.set_pixel x y c b
      = Return (b <| LinearFramebufferTarget.buffer := v |>) ∧
    store_set (LinearFramebufferTarget.width b) (LinearFramebufferTarget.height b)
      (LinearFramebufferTarget.stride_pixels b) x y
      (LinearPixelFormat.encode c (LinearFramebufferTarget.format b))
      (LinearFramebufferTarget.buffer b) = Return v.
Proof.
  intros Hb. destruct (store_set_spec _ _ _ (format_dec (LinearFramebufferTarget.format b)) _ x y
    (LinearPixelFormat.encode c (LinearFramebufferTarget.format b)) Hb) as (v & E & _);
    [apply encode_length|].
  exists v. split; [|done]. unfold LinearFramebufferTarget.set_pixel.
  rewrite framebuffer_offset by done. simpl.
  unfold store_set in E. destruct (in_size _ _ x y); simpl; [by rewrite E|].
  injection E as <-. by destruct b.
Qed.

#[global] Program Instance framebuffer_paint : PaintSpec LinearFramebufferTarget.t :=
  {| target_ok := framebuffer_ok |}.
Next Obligation.
  intros b x y c Hb. destruct (framebuffer_write b x y c Hb) as (v & E & Ev). eexists. split; [done|].
  destruct (store_set_spec _ _ _ (format_dec (LinearFramebufferTarget.format b)) _ x y
    (LinearPixelFormat.encode c (LinearFramebufferTarget.format b)) Hb) as (v' & Ev' & Hg & _);
    [apply encode_length|]. rewrite Ev in Ev'. by injection Ev' as <-.
Qed.

(** The framebuffer has no alpha: a colour is shown opaque. *)
Definition opaque (c : RgbaColor.t) : RgbaColor.t :=
  RgbaColor.new (RgbaColor.r c) (RgbaColor.g c) (RgbaColor.b c) 255.

#[global] Program Instance framebuffer_pict : PictureSpec LinearFramebufferTarget.t := {|
  shown _ := opaque;
  picture := framebuffer_picture
|}.
Next Obligation.
  intros b x y Hb. cbn [pixel LinearFramebufferTarget.render_target].
  unfold LinearFramebufferTarget.pixel.
  rewrite framebuffer_offset by done. simpl. unfold framebuffer_picture, store_picture.
  destruct (in_size _ _ x y) eqn:E; [|done]. apply in_size_iff in E as [Hx Hy].
  edestruct (store_get _ _ _ _ x y (λ b0 b1 b2 b3, Return (Some (LinearPixelFormat.decode b0 b1 b2
    (LinearFramebufferTarget.format b)))) Hb Hx Hy) as (b0 & b1 & b2 & b3 & -> & ->). done.
Qed.
Next Obligation. intros b x y Hb. by apply store_bounds. Qed.
Next Obligation.
  intros b x y c b' Hb E. destruct (framebuffer_write b x y c Hb) as (v & E1 & Ev).
  cbn [write_pixel LinearFramebufferTarget.render_target] in E. rewrite E in E1. injection E1 as ->.
  split; [done|]. intros x' y'.
  destruct (store_set_spec _ _ _ (format_dec (LinearFramebufferTarget.format b)) _ x y
    (LinearPixelFormat.encode c (LinearFramebufferTarget.format b)) Hb) as (v' & Ev' & _ & Hp);
    [apply encode_length|]. rewrite Ev in Ev'. injection Ev' as <-.
  unfold framebuffer_picture. simpl. rewrite Hp.
  by destruct (LinearFramebufferTarget.format b).
Qed.

(** The assertion of the constructor makes a good state, provided that a row of pixels
    fits its stride. *)
Lemma new_framebuffer_ok w h stride f v b :
  LinearFramebufferTarget.new w h stride f v = Return b →
  w ≤ stride → len v ≤ ISIZE_MAX → framebuffer_ok b.
Proof.
  unfold LinearFramebufferTarget.new, saturating_mul, u64_max, LinearPixelFormat.bytes_per_pixel.
  destruct (N.ltb_spec (len v) (N.min (N.min (h * stride) 18446744073709551615 * 4)
    18446744073709551615)) as [|Hl]; [done|]. intros [= <-] Hw Hv. unfold ISIZE_MAX in *.
  split; simpl; [done|lia|done].
Qed.
End StoreSpec.
