(* ===== verification/Views.v ===== *)
(** * Views ([view_types], [services_view_host])

    The frames that components publish and the host that keeps the latest frame of each
    view, with the handles that authorise publishing.  Texts are lists of characters, as in
    [Editor.v].  A view identifier is drawn by [create_view] and is an argument here. *)

From S2P Require Import Prelude CoreTypes Editor.
Open Scope list_scope.
Open Scope N_scope.

Module ViewId.
(* view_types/src/lib.rs:53-72 ViewId *)
Record t := mk { uuid : Uuid }.
#[global] Instance eq_dec : EqDecision t.
Proof. solve_decision. Defined.
#[global] Program Instance countable : Countable t := inj_countable' uuid mk _.
Next Obligation. by intros []. Qed.
(* view_types/src/lib.rs:80-84 ViewId::fmt *)
Definition display `{UuidFormat} (v : t) : Str.t := Str.of_string ("view:" +:+ uuid_to_string (uuid v)).
End ViewId.

Module ViewKind.
(* view_types/src/lib.rs:86-95 ViewKind *)
Inductive t := TextBuffer | StatusLine | Panel.
#[global] Instance eq_dec : EqDecision t.
Proof. solve_decision. Defined.
(** The [Display] and the derived [Debug] text are the same. *)
(* view_types/src/lib.rs:97-105 Display for ViewKind *)
Definition display (k : t) : Str.t :=
  Str.of_string match k with
                | TextBuffer => "TextBuffer"
                | StatusLine => "StatusLine"
                | Panel => "Panel"
                end%string.
End ViewKind.

Module CursorPosition.
(* view_types/src/lib.rs:107-120 CursorPosition *)
Record t := new { line : N; column : N }.
#[global] Instance eq_dec : EqDecision t.
Proof. solve_decision. Defined.
(* view_types/src/lib.rs:123-125 CursorPosition::origin *)
Definition origin : t := new 0 0.
End CursorPosition.

Module ViewContent.
(* view_types/src/lib.rs:208-217 ViewContent *)
Inductive t :=
| TextBuffer (lines : list Str.t)
| StatusLine (text : Str.t)
| Panel (metadata : Str.t).
#[global] Instance eq_dec : EqDecision t.
Proof. solve_decision. Defined.
(* view_types/src/lib.rs:221-223 ViewContent::empty_text_buffer *)
Definition empty_text_buffer : t := TextBuffer [].
(* view_types/src/lib.rs:226-228 ViewContent::text_buffer *)
Definition text_buffer (lines : list Str.t) : t := TextBuffer lines.
(* view_types/src/lib.rs:231-233 ViewContent::status_line *)
Definition status_line (text : Str.t) : t := StatusLine text.
(* view_types/src/lib.rs:236-240 ViewContent::panel *)
Definition panel (metadata : Str.t) : t := Panel metadata.
(* view_types/src/lib.rs:243-249 ViewContent::line_count *)
Definition line_count (c : t) : N :=
  match c with TextBuffer lines => len lines | StatusLine _ => 1 | Panel _ => 0 end.
(* view_types/src/lib.rs:252-258 ViewContent::get_line *)
Definition get_line (index : N) (c : t) : option Str.t :=
  match c with
  | TextBuffer lines => lines !! N.to_nat index
  | StatusLine text => if index =? 0 then Some text else None
  | Panel _ => None
  end.
End ViewContent.

Module ViewFrame.
(* view_types/src/lib.rs:134-156 ViewFrame *)
Record t := mk {
  view_id : ViewId.t;
  kind : ViewKind.t;
  revision : N;
  content : ViewContent.t;
  cursor : option CursorPosition.t;
  title : option Str.t;
  component_id : option Str.t;
  timestamp_ns : N
}.
#[global] Instance eq_dec : EqDecision t.
Proof. solve_decision. Defined.
#[global] Instance rebuild_t : Rebuild t := λ f,
  mk (view_id f) (kind f) (revision f) (content f) (cursor f) (title f) (component_id f)
     (timestamp_ns f).
(* view_types/src/lib.rs:160-177 ViewFrame::new *)
Definition new (view_id : ViewId.t) (kind : ViewKind.t) (revision : N) (content : ViewContent.t)
    (timestamp_ns : N) : t :=
  mk view_id kind revision content None None None timestamp_ns.
(* view_types/src/lib.rs:180-183 ViewFrame::with_cursor *)
Definition with_cursor (c : CursorPosition.t) (f : t) : t := f <| cursor := Some c |>.
(* view_types/src/lib.rs:186-189 ViewFrame::with_title *)
Definition with_title (s : Str.t) (f : t) : t := f <| title := Some s |>.
(* view_types/src/lib.rs:192-195 ViewFrame::with_component_id *)
Definition with_component_id (s : Str.t) (f : t) : t := f <| component_id := Some s |>.
(* view_types/src/lib.rs:198-200 ViewFrame::is_newer_than *)
Definition is_newer_than (other f : t) : bool :=
  bool_decide (view_id f = view_id other) && (revision other <? revision f).
(* view_types/src/lib.rs:203-205 ViewFrame::is_valid_successor *)
Definition is_valid_successor (previous f : t) : bool :=
  bool_decide (view_id f = view_id previous) && (revision previous <? revision f).
End ViewFrame.

(** ** The host *)

Module ViewHandleCap.
(* services_view_host/src/lib.rs:31-53 ViewHandleCap *)
Record t := new { view_id : ViewId.t; task_id : TaskId.t; channel : ChannelId.t; token : N }.
#[global] Instance eq_dec : EqDecision t.
Proof. solve_decision. Defined.
End ViewHandleCap.

Module ViewSubscriptionCap.
(* services_view_host/src/lib.rs:58-80 ViewSubscriptionCap *)
Record t := new { view_id : ViewId.t; task_id : TaskId.t; channel : ChannelId.t; token : N }.
End ViewSubscriptionCap.

Module ViewHostError.
(* services_view_host/src/lib.rs:83-106 ViewHostError *)
Inductive t :=
| ViewNotFound (id : ViewId.t)
| ViewAlreadyExists (id : ViewId.t)
| InvalidCapability
| Unauthorized (id : ViewId.t)
| RevisionNotMonotonic (expected actual : N)
| ViewIdMismatch (expected actual : ViewId.t)
| NoFrames (id : ViewId.t).
(* services_view_host/src/lib.rs:84-106 ViewHostError *)
Definition display `{UuidFormat} (e : t) : Str.t :=
  match e with
  | ViewNotFound id => Str.of_string "View not found: " ++ ViewId.display id
  | ViewAlreadyExists id => Str.of_string "View already exists: " ++ ViewId.display id
  | InvalidCapability => Str.of_string "Invalid capability"
  | Unauthorized id => Str.of_string "Unauthorized access to view: " ++ ViewId.display id
  | RevisionNotMonotonic expected actual =>
      Str.of_string ("Revision not monotonic: expected > " +:+ pretty expected +:+ ", got " +:+ pretty actual)
  | ViewIdMismatch expected actual =>
      Str.of_string "View ID mismatch: expected " ++ ViewId.display expected ++ Str.of_string ", got "
      ++ ViewId.display actual
  | NoFrames id => Str.of_string "No frames published yet for view: " ++ ViewId.display id
  end.
End ViewHostError.

Module ViewRecord.
(* services_view_host/src/lib.rs:108-123 ViewRecord *)
Record t := mk {
  view_id : ViewId.t;
  kind : ViewKind.t;
  owner_task_id : TaskId.t;
  handle_token : N;
  latest_frame : option ViewFrame.t;
  subscriptions : list ViewSubscriptionCap.t
}.
#[global] Instance rebuild_t : Rebuild t := λ r,
  mk (view_id r) (kind r) (owner_task_id r) (handle_token r) (latest_frame r) (subscriptions r).
(* services_view_host/src/lib.rs:126-135 ViewRecord::new *)
Definition new (view_id : ViewId.t) (kind : ViewKind.t) (owner : TaskId.t) (token : N) : t :=
  mk view_id kind owner token None [].
(* services_view_host/src/lib.rs:137-149 ViewRecord::verify_handle *)
Definition verify_handle (handle : ViewHandleCap.t) (r : t) : result unit ViewHostError.t :=
  if negb (bool_decide (ViewHandleCap.view_id handle = view_id r))
  then Err (ViewHostError.ViewIdMismatch (view_id r) (ViewHandleCap.view_id handle))
  else if negb (bool_decide (ViewHandleCap.task_id handle = owner_task_id r))
          || negb (ViewHandleCap.token handle =? handle_token r)
  then Err (ViewHostError.Unauthorized (view_id r))
  else Ok tt.
(** The sum in the error message can overflow. *)
(* services_view_host/src/lib.rs:151-162 ViewRecord::verify_revision *)
Definition verify_revision (new_revision : N) (r : t) : outcome (result unit ViewHostError.t) :=
  match latest_frame r with
  | Some latest =>
      if new_revision <=? ViewFrame.revision latest then
        expected ← add_u64 (ViewFrame.revision latest) 1;
        Return (Err (ViewHostError.RevisionNotMonotonic expected new_revision))
      else Return (Ok tt)
  | None => Return (Ok tt)
  end.
End ViewRecord.

Module ViewHost.
(* services_view_host/src/lib.rs:165-175 ViewHost *)
Record t := mk {
  next_token : N;
  views : gmap ViewId.t ViewRecord.t;
  next_subscription_token : N
}.
#[global] Instance rebuild_t : Rebuild t := λ h,
  mk (next_token h) (views h) (next_subscription_token h).
(* services_view_host/src/lib.rs:179-185 ViewHost::new *)
Definition new : t := mk 1 ∅ 1000.

(* services_view_host/src/lib.rs:207-212 ViewHost::create_view *)
Definition initial_content (kind : ViewKind.t) : ViewContent.t :=
  match kind with
  | ViewKind.TextBuffer => ViewContent.empty_text_buffer
  | ViewKind.StatusLine => ViewContent.status_line []
  | ViewKind.Panel => ViewContent.panel []
  end.

(** [drawn] is the [ViewId::new()]. *)
(* services_view_host/src/lib.rs:187-221 ViewHost::create_view *)
Definition create_view (drawn : ViewId.t) (kind : ViewKind.t) (title : option Str.t)
    (task_id : TaskId.t) (channel : ChannelId.t) (h : t)
    : outcome (result ViewHandleCap.t ViewHostError.t * t) :=
  let token := next_token h in
  next ← add_u64 (next_token h) 1;
  let h := h <| next_token := next |> in
  let record := ViewRecord.new drawn kind task_id token in
  let record :=
    match title with
    | Some title =>
        record <| ViewRecord.latest_frame :=
          Some (ViewFrame.with_title title (ViewFrame.new drawn kind 0 (initial_content kind) 0)) |>
    | None => record
    end in
  Return (Ok (ViewHandleCap.new drawn task_id channel token),
          h <| views := <[drawn := record]> (views h) |>).

(* services_view_host/src/lib.rs:223-255 ViewHost::publish_frame *)
Definition publish_frame (handle : ViewHandleCap.t) (frame : ViewFrame.t) (h : t)
    : outcome (result unit ViewHostError.t * t) :=
  let id := ViewHandleCap.view_id handle in
  match views h !! id with
  | None => Return (Err (ViewHostError.ViewNotFound id), h)
  | Some record =>
      match ViewRecord.verify_handle handle record with
      | Err e => Return (Err e, h)
      | Ok _ =>
          if negb (bool_decide (ViewFrame.view_id frame = id))
          then Return (Err (ViewHostError.ViewIdMismatch id (ViewFrame.view_id frame)), h)
          else
            r ← ViewRecord.verify_revision (ViewFrame.revision frame) record;
            match r with
            | Err e => Return (Err e, h)
            | Ok _ =>
                Return (Ok tt, h <| views :=
                  <[id := record <| ViewRecord.latest_frame := Some frame |>]> (views h) |>)
            end
      end
  end.

(* services_view_host/src/lib.rs:257-279 ViewHost::subscribe *)
Definition subscribe (id : ViewId.t) (task_id : TaskId.t) (channel : ChannelId.t) (h : t)
    : outcome (result ViewSubscriptionCap.t ViewHostError.t * t) :=
  match views h !! id with
  | None => Return (Err (ViewHostError.ViewNotFound id), h)
  | Some record =>
      let token := next_subscription_token h in
      next ← add_u64 (next_subscription_token h) 1;
      let subscription := ViewSubscriptionCap.new id task_id channel token in
      Return (Ok subscription,
        h <| next_subscription_token := next |>
          <| views := <[id := record <| ViewRecord.subscriptions ::=
                                (λ l, l ++ [subscription]) |>]> (views h) |>)
  end.

(* services_view_host/src/lib.rs:281-291 ViewHost::get_latest *)
Definition get_latest (id : ViewId.t) (h : t) : result (option ViewFrame.t) ViewHostError.t :=
  match views h !! id with
  | None => Err (ViewHostError.ViewNotFound id)
  | Some record => Ok (ViewRecord.latest_frame record)
  end.

(* services_view_host/src/lib.rs:293-307 ViewHost::remove_view *)
Definition remove_view (handle : ViewHandleCap.t) (h : t) : result unit ViewHostError.t * t :=
  let id := ViewHandleCap.view_id handle in
  match views h !! id with
  | None => (Err (ViewHostError.ViewNotFound id), h)
  | Some record =>
      match ViewRecord.verify_handle handle record with
      | Err e => (Err e, h)
      | Ok _ => (Ok tt, h <| views := delete id (views h) |>)
      end
  end.

(* services_view_host/src/lib.rs:309-312 ViewHost::list_views *)
Definition list_views `{HashOrder} (h : t) : list ViewId.t := (hm_iter (views h)).*1.

(* services_view_host/src/lib.rs:314-322 ViewHost::get_view_info *)
Definition get_view_info (id : ViewId.t) (h : t) : result (ViewKind.t * TaskId.t) ViewHostError.t :=
  match views h !! id with
  | None => Err (ViewHostError.ViewNotFound id)
  | Some record => Ok (ViewRecord.kind record, ViewRecord.owner_task_id record)
  end.
End ViewHost.

(** ** Properties *)
Module ViewSpec.
Import ViewHost.

(** The calls that change the host; every handle that is presented is one the host gave
    out, since the token of a handle is private. *)
Inductive op :=
| Create (drawn : ViewId.t) (kind : ViewKind.t) (title : option Str.t) (task : TaskId.t) (ch : ChannelId.t)
| Publish (handle : ViewHandleCap.t) (frame : ViewFrame.t)
| Subscribe (id : ViewId.t) (task : TaskId.t) (ch : ChannelId.t)
| Remove (handle : ViewHandleCap.t).

(** One call; the second component is the handle that it gave out. *)
Definition step (o : op) (h : t) : outcome (option ViewHandleCap.t * t) :=
  match o with
  | Create d k ti ta c =>
      '(r, h) ← create_view d k ti ta c h;
      Return (match r with Ok cap => Some cap | Err _ => None end, h)
  | Publish cap f => '(_, h) ← publish_frame cap f h; Return (None, h)
  | Subscribe i ta c => '(_, h) ← subscribe i ta c h; Return (None, h)
  | Remove cap => Return (None, (remove_view cap h).2)
  end.

(** The handle a call presents. *)
Definition presents (o : op) : option ViewHandleCap.t :=
  match o with Publish cap _ | Remove cap => Some cap | _ => None end.
Definition draws (o : op) : option ViewId.t := match o with Create d _ _ _ _ => Some d | _ => None end.

(** Reachable hosts with the handles given out so far; drawn identifiers are new and only
    handles that were given out are presented. *)
Inductive reach : list ViewHandleCap.t → t → Prop :=
| reach_new : reach [] new
| reach_step caps h o cap h' :
    reach caps h → step o h = Return (cap, h') →
    (∀ c, presents o = Some c → c ∈ caps) →
    (∀ d, draws o = Some d → d ∉ ViewHandleCap.view_id <$> caps) →
    reach (option_list cap ++ caps) h'.

(** A view in the table belongs to exactly one handle that was given out. *)
Record host_inv (caps : list ViewHandleCap.t) (h : t) : Prop := {
  hi_tokens : ∀ c, c ∈ caps → ViewHandleCap.token c < next_token h;
  hi_ids : NoDup (ViewHandleCap.view_id <$> caps);
  hi_views : ∀ id r, views h !! id = Some r →
    ViewRecord.view_id r = id ∧
    (∃ c, c ∈ caps ∧ ViewHandleCap.view_id c = id ∧
          ViewHandleCap.task_id c = ViewRecord.owner_task_id r ∧
          ViewHandleCap.token c = ViewRecord.handle_token r) ∧
    (∀ f, ViewRecord.latest_frame r = Some f → ViewFrame.view_id f = id)
}.

Lemma verify_handle_Ok handle r :
  ViewRecord.verify_handle handle r = Ok tt ↔
  ViewHandleCap.view_id handle = ViewRecord.view_id r ∧
  ViewHandleCap.task_id handle = ViewRecord.owner_task_id r ∧
  ViewHandleCap.token handle = ViewRecord.handle_token r.
Proof.
  unfold ViewRecord.verify_handle. case_bool_decide; simpl; [|naive_solver].
  case_bool_decide; simpl; [|naive_solver].
  destruct (N.eqb_spec (ViewHandleCap.token handle) (ViewRecord.handle_token r)); naive_solver.
Qed.

(** What a successful publication is. *)
Lemma publish_frame_Ok cap f h h' :
  publish_frame cap f h = Return (Ok tt, h') ↔
  ∃ r, views h !! ViewHandleCap.view_id cap = Some r ∧
    ViewRecord.verify_handle cap r = Ok tt ∧ ViewFrame.view_id f = ViewHandleCap.view_id cap ∧
    (∀ l, ViewRecord.latest_frame r = Some l → ViewFrame.revision l < ViewFrame.revision f) ∧
    h' = h <| views := <[ViewHandleCap.view_id cap := r <| ViewRecord.latest_frame := Some f |>]> (views h) |>.
Proof.
  unfold publish_frame. destruct (views h !! _) as [r|]; [|naive_solver].
  destruct (ViewRecord.verify_handle cap r) as [[]|] eqn:Ev;
    [|split; [done|intros (r' & [= <-] & ? & _); congruence]].
  case_bool_decide; simpl; [|split; [done|naive_solver]]. unfold ViewRecord.verify_revision.
  destruct (ViewRecord.latest_frame r) as [l|] eqn:El; simpl.
  - destruct (N.leb_spec (ViewFrame.revision f) (ViewFrame.revision l)); simpl.
    + destruct (add_u64 _ _); simpl; split; try done;
        intros (r' & [= <-] & _ & _ & Hl & _); specialize (Hl l El); lia.
    + split.
      * intros [= <-]. exists r. split_and!; try done. intros l' Hl'. congruence || (assert (l' = l) as -> by congruence; done).
      * intros (r' & [= <-] & _ & _ & _ & ->). done.
  - split.
    + intros [= <-]. exists r. split_and!; try done. intros l' Hl'. congruence.
    + intros (r' & [= <-] & _ & _ & _ & ->). done.
Qed.

(** Any other answer leaves the host as it was. *)
Lemma publish_frame_Err cap f h e h' :
  publish_frame cap f h = Return (Err e, h') → h' = h.
Proof.
  unfold publish_frame. destruct (views h !! _) as [r|]; [|naive_solver].
  destruct (ViewRecord.verify_handle cap r) as [[]|]; [|naive_solver].
  case_bool_decide; simpl; [|naive_solver].
  intros ([[]|] & _ & E)%bind_Return; naive_solver.
Qed.

Lemma host_inv_step caps h o cap h' :
  host_inv caps h → step o h = Return (cap, h') →
  (∀ d, draws o = Some d → d ∉ ViewHandleCap.view_id <$> caps) →
  host_inv (option_list cap ++ caps) h'.
Proof.
  intros [Ht Hn Hv] Hs Hd. destruct o as [d k ti ta ch|c f|id ta ch|c]; simpl in Hs.
  - unfold create_view in Hs. destruct (add_u64 (next_token h) 1) as [n| |] eqn:En; [|done..].
    apply add_u64_Return in En as [-> _]. simpl in Hs. injection Hs as <- <-. simpl.
    assert (∀ c, c ∈ ViewHandleCap.new d ta ch (next_token h) :: caps →
      ViewHandleCap.token c < next_token h + 1) as Ht'.
    { intros c [->|Hc]%elem_of_cons; simpl; [lia|]. specialize (Ht c Hc). lia. }
    split; simpl; [done|constructor; [by apply Hd|done]|].
    intros id r. rewrite lookup_insert_Some. intros [[<- <-]|[Hne Hr]].
    + destruct ti; simpl; (split_and!; [done| |naive_solver]);
        eexists; (split; [by left|done]).
    + destruct (Hv id r Hr) as (? & (c & ? & ?) & ?). split_and!; [done| |done].
      exists c. split; [by right|done].
  - apply bind_Return in Hs as ([[[]|e] h1] & E & [= <- <-]).
    + apply publish_frame_Ok in E as (r & Hr & _ & Hf & _ & ->).
      destruct (Hv _ _ Hr) as (? & Hc & _).
      split; simpl; [done..|]. intros id r'. rewrite lookup_insert_Some.
      intros [[<- <-]|[? Hr']]; [|by apply Hv]. simpl. split_and!; [done..|]. by intros ? [= <-].
    + by apply publish_frame_Err in E as ->.
  - unfold subscribe in Hs. destruct (views h !! id) as [r|] eqn:Hr; [|by injection Hs as <- <-].
    destruct (add_u64 _ _); simpl in Hs; [|done..]. injection Hs as <- <-.
    split; simpl; [done..|]. intros id' r'. rewrite lookup_insert_Some.
    intros [[<- <-]|[? Hr']]; [|by apply Hv]. simpl. by apply Hv.
  - injection Hs as <- <-. unfold remove_view. destruct (views h !! _) as [r|]; [|done].
    destruct (ViewRecord.verify_handle c r); [|done]. simpl. split; simpl; [done..|].
    intros id r'. rewrite lookup_delete_Some. intros [_ ?]. by apply Hv.
Qed.

Lemma reach_inv caps h : reach caps h → host_inv caps h.
Proof.
  induction 1 as [|caps h o cap h' _ IH Hs Hp Hd].
  - split; simpl; [by intros ? ?%elem_of_nil|constructor|done].
  - by eapply host_inv_step.
Qed.

(** The latest frame of a view in a host. *)
Definition latest (id : ViewId.t) (h : t) : option ViewFrame.t :=
  views h !! id ≫= ViewRecord.latest_frame.

(** A view is its owner's.  In any host reached by calls that present only handles
    the host gave out, a call changes the latest frame of a view only if it presents the
    one handle that was given out for that view; the frame it then stores names that view
    and has a higher revision than the one it replaces; and the view goes only when that
    handle removes it. *)
Theorem only_owner_changes_view caps h o cap h' id :
  reach caps h → step o h = Return (cap, h') →
  (∀ c, presents o = Some c → c ∈ caps) →
  (∀ d, draws o = Some d → d ∉ ViewHandleCap.view_id <$> caps) →
  is_Some (views h !! id) →
  (latest id h' = latest id h ∧ is_Some (views h' !! id)) ∨
  (∃ c, presents o = Some c ∧ c ∈ caps ∧ ViewHandleCap.view_id c = id ∧
     (∀ c', c' ∈ caps → ViewHandleCap.view_id c' = id → c' = c) ∧
     (views h' !! id = None ∨
      ∃ f, latest id h' = Some f ∧ ViewFrame.view_id f = id ∧
        ∀ l, latest id h = Some l → ViewFrame.revision l < ViewFrame.revision f)).
Proof.
  intros Hr Hs Hp Hd [r Hid]. destruct (reach_inv caps h Hr) as [_ Hn Hv].
  assert (∀ c c', c ∈ caps → c' ∈ caps → ViewHandleCap.view_id c = id →
    ViewHandleCap.view_id c' = id → c' = c) as Huniq.
  { intros c c' (i & Hi)%list_elem_of_lookup (j & Hj)%list_elem_of_lookup Hc Hc'.
    assert (i = j) as <-; [|congruence].
    by apply (NoDup_lookup (ViewHandleCap.view_id <$> caps) i j id);
      rewrite ?list_lookup_fmap, ?Hi, ?Hj; simpl; try congruence. }
  destruct o as [d k ti ta ch|c f|id' ta ch|c]; simpl in Hs.
  - unfold create_view in Hs. destruct (add_u64 (next_token h) 1) as [n| |]; [|done..].
    simpl in Hs. injection Hs as <- <-. left. unfold latest. simpl.
    destruct (Hv id r Hid) as (_ & (c & Hc & Hci & _) & _).
    rewrite lookup_insert_ne; [by rewrite Hid|]. intros ->. apply (Hd id eq_refl).
    apply list_elem_of_fmap. by exists c.
  - apply bind_Return in Hs as ([[[]|e] h1] & E & [= <- <-]).
    2:{ apply publish_frame_Err in E as ->. by left. }
    apply publish_frame_Ok in E as (r' & Hr' & _ & Hf & Hrev & ->).
    destruct (decide (ViewHandleCap.view_id c = id)) as [Hci|Hne].
    + right. exists c. pose proof (Hp c eq_refl) as Hc. split_and!; [done..|naive_solver|].
      right. exists f. unfold latest. simpl. rewrite Hci in *. rewrite lookup_insert_eq, Hr'. simpl.
      split_and!; [done|congruence|done].
    + left. unfold latest. simpl. rewrite lookup_insert_ne by done. by rewrite Hid.
  - unfold subscribe in Hs. left. destruct (views h !! id') as [r'|] eqn:Hr'.
    2:{ injection Hs as <- <-. by eauto. }
    destruct (add_u64 _ _); simpl in Hs; [|done..]. injection Hs as <- <-.
    unfold latest. simpl. destruct (decide (id' = id)) as [->|].
    + rewrite lookup_insert_eq, Hr'. simpl. done.
    + rewrite lookup_insert_ne by done. by rewrite Hid.
  - injection Hs as <- <-. unfold remove_view. destruct (views h !! ViewHandleCap.view_id c) as [r'|] eqn:Hr'.
    2:{ left. by eauto. }
    destruct (ViewRecord.verify_handle c r') as [[]|] eqn:Ev; simpl; [|left; by eauto].
    destruct (decide (ViewHandleCap.view_id c = id)) as [Hci|Hne].
    + right. exists c. pose proof (Hp c eq_refl) as Hc. split_and!; [done..|naive_solver|].
      left. rewrite Hci. apply lookup_delete_eq.
    + left. unfold latest. simpl. rewrite lookup_delete_ne by done. by rewrite Hid.
Qed.

Definition vid (n : N) : ViewId.t := ViewId.mk n.
Definition sample_cap : ViewHandleCap.t := ViewHandleCap.new (vid 1) (TaskId.mk 7) (ChannelId.mk 8) 1.
Definition sample_frame (rev : N) : ViewFrame.t :=
  ViewFrame.new (vid 1) ViewKind.StatusLine rev (ViewContent.status_line [104; 105]) 5.
Definition sample_host : t :=
  match step (Create (vid 1) ViewKind.StatusLine None (TaskId.mk 7) (ChannelId.mk 8)) new with
  | Return (_, h) => h | _ => new end.

Lemma sample_host_reach : reach [sample_cap] sample_host.
Proof.
  apply (reach_step [] new (Create (vid 1) ViewKind.StatusLine None (TaskId.mk 7) (ChannelId.mk 8))
    (Some sample_cap)); [constructor|by vm_compute|done|]. intros d _. apply not_elem_of_nil.
Qed.

Lemma only_owner_changes_view_witness :
  ∃ h', step (Publish sample_cap (sample_frame 3)) sample_host = Return (None, h') ∧
    (latest (vid 1) h' = latest (vid 1) sample_host ∧ is_Some (views h' !! vid 1) ∨
     ∃ c, presents (Publish sample_cap (sample_frame 3)) = Some c ∧ c ∈ [sample_cap] ∧
       ViewHandleCap.view_id c = vid 1 ∧
       (∀ c', c' ∈ [sample_cap] → ViewHandleCap.view_id c' = vid 1 → c' = c) ∧
       (views h' !! vid 1 = None ∨
        ∃ f, latest (vid 1) h' = Some f ∧ ViewFrame.view_id f = vid 1 ∧
          ∀ l, latest (vid 1) sample_host = Some l → ViewFrame.revision l < ViewFrame.revision f)).
Proof.
  eexists. split; [by vm_compute|].
  apply (only_owner_changes_view [sample_cap] sample_host (Publish sample_cap (sample_frame 3)) None).
  - apply sample_host_reach.
  - by vm_compute.
  - intros c [= <-]. by left.
  - done.
  - by eexists.
Defined.

(** A view whose latest frame has the highest revision cannot be published to any more,
    and trying to does not return an error: the host panics while it computes the revision
    to report. *)
Theorem publish_at_last_revision_panics cap f h r l :
  views h !! ViewHandleCap.view_id cap = Some r → ViewRecord.verify_handle cap r = Ok tt →
  ViewFrame.view_id f = ViewHandleCap.view_id cap → u64_ok (ViewFrame.revision f) →
  ViewRecord.latest_frame r = Some l → ViewFrame.revision l = u64_max →
  publish_frame cap f h = Panic.
Proof.
  intros Hr Hh Hf Ho Hl Hm. unfold publish_frame, u64_ok in *. rewrite Hr, Hh.
  rewrite bool_decide_eq_true_2 by done. simpl. unfold ViewRecord.verify_revision. rewrite Hl, Hm.
  by rewrite (proj2 (N.leb_le _ _) Ho).
Qed.

Lemma publish_at_last_revision_panics_witness :
  publish_frame sample_cap (sample_frame 9)
    (mk 2 {[vid 1 := ViewRecord.mk (vid 1) ViewKind.StatusLine (TaskId.mk 7) 1
                       (Some (sample_frame u64_max)) []]} 1000) = Panic.
Proof.
  eapply (publish_at_last_revision_panics sample_cap (sample_frame 9)); by vm_compute.
Defined.
End ViewSpec.
