(* ===== verification/Layout.v ===== *)
(** * Workspace layout ([services_workspace_manager/src/lib.rs])

    Tiles with tabs: the split layout of the workspace, and the snapshots that the renderers
    get.  Indices are positions in vectors of components and are [nat]. *)

From S2P Require Import Prelude CoreTypes Editor Views.
Open Scope list_scope.
Open Scope nat_scope.

Module ComponentId.
(* services_workspace_manager/src/lib.rs:109-128 ComponentId *)
Record t := mk { uuid : Uuid }.
#[global] Instance eq_dec : EqDecision t.
Proof. solve_decision. Defined.
#[global] Program Instance countable : Countable t := inj_countable' uuid mk _.
Next Obligation. by intros []. Qed.
End ComponentId.

Module SplitAxis.
(* services_workspace_manager/src/lib.rs:320-327 SplitAxis *)
Inductive t := Horizontal | Vertical.
#[global] Instance eq_dec : EqDecision t.
Proof. solve_decision. Defined.
(* services_workspace_manager/src/lib.rs:330-335 SplitAxis::as_label *)
Definition as_label (a : t) : string :=
  match a with Horizontal => "horizontal" | Vertical => "vertical" end.
End SplitAxis.

(** [iter().position(|id| *id == c)]. *)
Definition position (c : ComponentId.t) (l : list ComponentId.t) : option nat :=
  fst <$> list_find (λ d, d = c) l.

Module WindowTileState.
(* services_workspace_manager/src/lib.rs:338-342 WindowTileState *)
Record t := mk { tabs : list ComponentId.t; active_tab : nat }.
#[global] Instance rebuild_t : Rebuild t := λ s, mk (tabs s) (active_tab s).
(* services_workspace_manager/src/lib.rs:345-350 WindowTileState::new *)
Definition new : t := mk [] 0.
(* services_workspace_manager/src/lib.rs:352-355 WindowTileState::with_tabs *)
Definition with_tabs (tabs : list ComponentId.t) : t :=
  mk tabs (match tabs with [] => 0 | _ => length tabs - 1 end).
(* services_workspace_manager/src/lib.rs:357-359 WindowTileState::active_component *)
Definition active_component (s : t) : option ComponentId.t := tabs s !! active_tab s.
(* services_workspace_manager/src/lib.rs:361-368 WindowTileState::add_tab *)
Definition add_tab (c : ComponentId.t) (s : t) : t :=
  match position c (tabs s) with
  | Some p => s <| active_tab := p |>
  | None => mk (tabs s ++ [c]) (length (tabs s ++ [c]) - 1)
  end.
(* services_workspace_manager/src/lib.rs:370-377 WindowTileState::set_active_component *)
Definition set_active_component (c : ComponentId.t) (s : t) : bool * t :=
  match position c (tabs s) with
  | Some p => (true, s <| active_tab := p |>)
  | None => (false, s)
  end.
(* services_workspace_manager/src/lib.rs:379-392 WindowTileState::remove_component *)
Definition remove_component (c : ComponentId.t) (s : t) : bool * t :=
  match position c (tabs s) with
  | None => (false, s)
  | Some p =>
      let tabs := delete p (tabs s) in
      let active :=
        match tabs with
        | [] => 0
        | _ =>
            if length tabs <=? active_tab s then length tabs - 1
            else if (p <=? active_tab s) && (0 <? active_tab s) then active_tab s - 1
            else active_tab s
        end in
      (true, mk tabs active)
  end.
(* services_workspace_manager/src/lib.rs:394-400 WindowTileState::focus_next_tab *)
Definition focus_next_tab (s : t) : option ComponentId.t * t :=
  match tabs s with
  | [] => (None, s)
  | _ => let s := s <| active_tab := (active_tab s + 1) mod length (tabs s) |> in
         (active_component s, s)
  end.
(* services_workspace_manager/src/lib.rs:402-412 WindowTileState::focus_previous_tab *)
Definition focus_previous_tab (s : t) : option ComponentId.t * t :=
  match tabs s with
  | [] => (None, s)
  | _ =>
      let s := s <| active_tab := if active_tab s =? 0 then length (tabs s) - 1
                                  else active_tab s - 1 |> in
      (active_component s, s)
  end.
End WindowTileState.

Module WindowLayoutState.
(* services_workspace_manager/src/lib.rs:415-420 WindowLayoutState *)
Record t := mk {
  split_axis : option SplitAxis.t;
  focused_tile : nat;
  tiles : list WindowTileState.t
}.
#[global] Instance rebuild_t : Rebuild t := λ s, mk (split_axis s) (focused_tile s) (tiles s).
(* services_workspace_manager/src/lib.rs:423-429 WindowLayoutState::new *)
Definition new : t := mk None 0 [WindowTileState.new].

(* services_workspace_manager/src/lib.rs:431-441 WindowLayoutState::normalize *)
Definition normalize (s : t) : t :=
  let s := match tiles s with [] => s <| tiles := [WindowTileState.new] |> | _ => s end in
  let s := if length (tiles s) <=? focused_tile s
           then s <| focused_tile := length (tiles s) - 1 |> else s in
  if length (tiles s) <=? 1 then s <| split_axis := None |> else s.

(** The loop of [set_focused_component] from tile number [i] on. *)
Fixpoint set_focused_from (c : ComponentId.t) (i : nat) (l : list WindowTileState.t)
    : option (nat * list WindowTileState.t) :=
  match l with
  | [] => None
  | tile :: l =>
      let '(found, tile) := WindowTileState.set_active_component c tile in
      if found then Some (i, tile :: l)
      else (λ '(j, l), (j, tile :: l)) <$> set_focused_from c (S i) l
  end.
(* services_workspace_manager/src/lib.rs:453-461 WindowLayoutState::set_focused_component *)
Definition set_focused_component (c : ComponentId.t) (s : t) : bool * t :=
  match set_focused_from c 0 (tiles s) with
  | Some (i, l) => (true, s <| focused_tile := i |> <| tiles := l |>)
  | None => (false, s)
  end.

(* services_workspace_manager/src/lib.rs:443-451 WindowLayoutState::add_component_tab *)
Definition add_component_tab (c : ComponentId.t) (s : t) : t :=
  let '(found, s) := set_focused_component c s in
  if found then s else
  let s := normalize s in
  match tiles s !! focused_tile s with
  | Some tile => s <| tiles := <[focused_tile s := WindowTileState.add_tab c tile]> (tiles s) |>
  | None => s
  end.

(* services_workspace_manager/src/lib.rs:463-472 WindowLayoutState::remove_component *)
Definition remove_component (c : ComponentId.t) (s : t) : t :=
  let l := (λ tile, (WindowTileState.remove_component c tile).2) <$> tiles s in
  let l := if 1 <? length l then filter (λ tile, WindowTileState.tabs tile ≠ []) l else l in
  normalize (s <| tiles := l |>).

(** Moving the active tab out of the source tile. *)
(* services_workspace_manager/src/lib.rs:477-490 WindowLayoutState::split_focused_tile *)
Definition take_active (tile : WindowTileState.t) : list ComponentId.t * WindowTileState.t :=
  let tabs := WindowTileState.tabs tile in
  if 1 <? length tabs then
    let active_index := Nat.min (WindowTileState.active_tab tile) (length tabs - 1) in
    let rest := delete active_index tabs in
    let active := if length rest <=? WindowTileState.active_tab tile then length rest - 1
                  else WindowTileState.active_tab tile in
    (option_list (tabs !! active_index), WindowTileState.mk rest active)
  else ([], tile).
(* services_workspace_manager/src/lib.rs:474-498 WindowLayoutState::split_focused_tile *)
Definition split_focused_tile (axis : SplitAxis.t) (s : t) : t :=
  let s := normalize s in
  let source_index := focused_tile s in
  let '(moved, l) :=
    match tiles s !! source_index with
    | Some tile => let '(moved, tile) := take_active tile in (moved, <[source_index := tile]> (tiles s))
    | None => ([], tiles s)
    end in
  let target_index := source_index + 1 in
  normalize (mk (Some axis) target_index
    (vec_insert target_index (WindowTileState.with_tabs moved) l)).

(** A tab operation on the focused tile. *)
Definition on_focused (f : WindowTileState.t → option ComponentId.t * WindowTileState.t) (s : t)
    : option ComponentId.t * t :=
  let s := normalize s in
  match tiles s !! focused_tile s with
  | Some tile => let '(r, tile) := f tile in (r, s <| tiles := <[focused_tile s := tile]> (tiles s) |>)
  | None => (None, s)
  end.
(* services_workspace_manager/src/lib.rs:500-505 WindowLayoutState::focus_next_tab *)
Definition focus_next_tab : t → option ComponentId.t * t := on_focused WindowTileState.focus_next_tab.
(* services_workspace_manager/src/lib.rs:507-512 WindowLayoutState::focus_previous_tab *)
Definition focus_previous_tab : t → option ComponentId.t * t :=
  on_focused WindowTileState.focus_previous_tab.
(* services_workspace_manager/src/lib.rs:514-518 WindowLayoutState::focused_active_component *)
Definition focused_active_component (s : t) : option ComponentId.t :=
  tiles s !! focused_tile s ≫= WindowTileState.active_component.
(* services_workspace_manager/src/lib.rs:520-522 WindowLayoutState::tile_count *)
Definition tile_count (s : t) : nat := length (tiles s).
End WindowLayoutState.

(** ** Snapshots *)

Module WorkspaceTileLayoutSnapshot.
(* services_workspace_manager/src/lib.rs:525-532 WorkspaceTileLayoutSnapshot *)
Record t := mk {
  tile_index : nat;
  is_focused : bool;
  active_component : option ComponentId.t;
  tabs : list ComponentId.t
}.
End WorkspaceTileLayoutSnapshot.

Module WorkspaceLayoutSnapshot.
(* services_workspace_manager/src/lib.rs:534-540 WorkspaceLayoutSnapshot *)
Record t := mk {
  split_axis : option SplitAxis.t;
  focused_tile : nat;
  tiles : list WorkspaceTileLayoutSnapshot.t
}.
(* services_workspace_manager/src/lib.rs:542-555 Default for WorkspaceLayoutSnapshot *)
Definition default : t := mk None 0 [WorkspaceTileLayoutSnapshot.mk 0 true None []].
End WorkspaceLayoutSnapshot.

(* services_workspace_manager/src/lib.rs:1993-2015 WorkspaceManager::window_layout_snapshot *)
Definition window_layout_snapshot (s : WindowLayoutState.t) : WorkspaceLayoutSnapshot.t :=
  let focused := Nat.min (WindowLayoutState.focused_tile s)
                   (length (WindowLayoutState.tiles s) - 1) in
  WorkspaceLayoutSnapshot.mk (WindowLayoutState.split_axis s) focused
    (imap (λ i tile, WorkspaceTileLayoutSnapshot.mk i (i =? focused)
             (WindowTileState.active_component tile) (WindowTileState.tabs tile))
       (WindowLayoutState.tiles s)).

Module WorkspaceTileRenderSnapshot.
(* services_workspace_manager/src/lib.rs:557-566 WorkspaceTileRenderSnapshot *)
Record t := mk {
  tile_index : nat;
  is_focused : bool;
  active_component : option ComponentId.t;
  tabs : list ComponentId.t;
  main_view : option ViewFrame.t;
  status_view : option ViewFrame.t
}.
End WorkspaceTileRenderSnapshot.

(** ** Properties *)
Module LayoutSpec.
Import WindowLayoutState.
#[local] Arguments Nat.leb : simpl never.
#[local] Arguments Nat.ltb : simpl never.
#[local] Arguments mbind : simpl never.

(** The tabs of all tiles. *)
Definition components (s : t) : list ComponentId.t := tiles s ≫= WindowTileState.tabs.

(** The active tab of a tile is one of its tabs. *)
Definition tile_ok (tile : WindowTileState.t) : Prop :=
  WindowTileState.active_tab tile < Nat.max 1 (length (WindowTileState.tabs tile)).

Record layout_ok (s : t) : Prop := {
  lo_focus : focused_tile s < length (tiles s);
  lo_tiles : Forall tile_ok (tiles s);
  lo_nodup : NoDup (components s);
  lo_axis : length (tiles s) = 1 → split_axis s = None
}.

Inductive op :=
| Add (c : ComponentId.t) | Remove (c : ComponentId.t) | Focus (c : ComponentId.t)
| Split (axis : SplitAxis.t) | NextTab | PreviousTab.

Definition step (o : op) (s : t) : t :=
  match o with
  | Add c => add_component_tab c s
  | Remove c => remove_component c s
  | Focus c => (set_focused_component c s).2
  | Split axis => split_focused_tile axis s
  | NextTab => (focus_next_tab s).2
  | PreviousTab => (focus_previous_tab s).2
  end.

Lemma position_Some c l p : position c l = Some p → l !! p = Some c ∧ p < length l.
Proof.
  unfold position. destruct (list_find _ l) as [[i d]|] eqn:E; [|done]. intros [= ->].
  apply list_find_Some in E as (Hl & -> & _). split; [done|]. by apply lookup_lt_Some in Hl.
Qed.

Lemma position_None c l : position c l = None ↔ c ∉ l.
Proof.
  unfold position. destruct (list_find (λ d, d = c) l) as [[i d]|] eqn:E; simpl.
  - split; [done|]. intros Hn. apply list_find_Some in E as (Hl & -> & _).
    exfalso. apply Hn. by eapply list_elem_of_lookup_2.
  - split; [|done]. intros _ Hc. apply list_find_None in E. rewrite Forall_forall in E. by apply (E c).
Qed.

Lemma normalize_id s : layout_ok s → normalize s = s.
Proof.
  intros [Hf _ _ Ha]. unfold normalize. destruct s as [ax f l]; simpl in *.
  destruct l as [|tile l]; simpl in *; [lia|].
  destruct (Nat.leb_spec (S (length l)) f); [lia|]. simpl.
  destruct (Nat.leb_spec (S (length l)) 1); [|done]. simpl. by rewrite Ha by lia.
Qed.

(** Normalisation restores the bounds of any layout with good tiles. *)
Lemma normalize_ok s :
  Forall tile_ok (tiles s) → NoDup (components s) →
  layout_ok (normalize s) ∧ components (normalize s) = components s ∧
  (0 < length (tiles s) → tiles (normalize s) = tiles s).
Proof.
  intros Ht Hn. destruct s as [ax f [|tile l]]; unfold normalize; simpl in *.
  - destruct (Nat.leb_spec 1 f); simpl; (split_and!; [|done|lia]); split; simpl; try lia; try done;
      repeat constructor.
  - destruct (Nat.leb_spec (S (length l)) f); simpl;
      destruct (Nat.leb_spec (S (length l)) 1); simpl; (split_and!; [|done..]); split; simpl; try done; lia.
Qed.

(** The tabs around tile [i]. *)
Lemma tabs_split ts i tile :
  ts !! i = Some tile →
  ts ≫= WindowTileState.tabs
  = (take i ts ≫= WindowTileState.tabs) ++ WindowTileState.tabs tile
    ++ (drop (S i) ts ≫= WindowTileState.tabs).
Proof. intros Hi. rewrite <- (take_drop_middle _ _ _ Hi) at 1. by rewrite bind_app, bind_cons. Qed.

Lemma tabs_insert ts i tile tile' :
  ts !! i = Some tile →
  <[i := tile']> ts ≫= WindowTileState.tabs
  = (take i ts ≫= WindowTileState.tabs) ++ WindowTileState.tabs tile'
    ++ (drop (S i) ts ≫= WindowTileState.tabs).
Proof.
  intros Hi. rewrite insert_take_drop by (by eapply lookup_lt_Some).
  by rewrite bind_app, bind_cons.
Qed.

Lemma components_insert s i tile tile' :
  tiles s !! i = Some tile → WindowTileState.tabs tile' = WindowTileState.tabs tile →
  components (s <| tiles := <[i := tile']> (tiles s) |>) = components s.
Proof.
  intros Hi Ht. unfold components. change (tiles (_ <| tiles := ?l |>)) with l.
  by rewrite (tabs_insert _ _ _ _ Hi), (tabs_split _ _ _ Hi), Ht.
Qed.

Lemma components_insert_perm s i tile tile' l :
  tiles s !! i = Some tile →
  WindowTileState.tabs tile' ≡ₚ l ++ WindowTileState.tabs tile →
  components (s <| tiles := <[i := tile']> (tiles s) |>) ≡ₚ l ++ components s.
Proof.
  intros Hi Ht. unfold components. change (tiles (_ <| tiles := ?l |>)) with l.
  rewrite (tabs_insert _ _ _ _ Hi), (tabs_split _ _ _ Hi), Ht. solve_Permutation.
Qed.

Lemma elem_of_components c s :
  c ∈ components s ↔ ∃ tile, tile ∈ tiles s ∧ c ∈ WindowTileState.tabs tile.
Proof. unfold components. rewrite list_elem_of_bind. naive_solver. Qed.

(** Focusing: the tile that holds the component gets it as its active tab. *)
Lemma set_focused_from_Some c i l j l' :
  set_focused_from c i l = Some (j, l') → Forall tile_ok l →
  ∃ k, j = i + k ∧ length l' = length l ∧ Forall tile_ok l' ∧
    (l' ≫= WindowTileState.tabs) = (l ≫= WindowTileState.tabs) ∧
    l' !! k ≫= WindowTileState.active_component = Some c.
Proof.
  revert i j l'. induction l as [|tile l IH]; intros i j l'; simpl; [done|].
  intros E [Ht Hl]%Forall_cons. unfold WindowTileState.set_active_component in E.
  destruct (position c (WindowTileState.tabs tile)) as [p|] eqn:Ep.
  - injection E as <- <-. apply position_Some in Ep as [Hp Hlt]. exists 0.
    split_and!; [lia|done|constructor; [|done]|by rewrite !bind_cons|done].
    unfold tile_ok in *. simpl. lia.
  - apply fmap_Some in E as ([j' l1] & E & [= <- ->]).
    destruct (IH _ _ _ E Hl) as (k & -> & ? & ? & Hc & ?). exists (S k).
    split_and!; [lia|simpl; lia|by constructor|by rewrite !bind_cons, Hc|done].
Qed.

Lemma set_focused_from_None c i l :
  set_focused_from c i l = None ↔ c ∉ l ≫= WindowTileState.tabs.
Proof.
  revert i. induction l as [|tile l IH]; intros i; simpl; [set_solver|].
  rewrite bind_cons, elem_of_app. unfold WindowTileState.set_active_component.
  destruct (position c (WindowTileState.tabs tile)) as [p|] eqn:Ep; simpl.
  - split; [done|]. intros Hn. exfalso. apply Hn. left. apply position_Some in Ep as [Hp _].
    by eapply list_elem_of_lookup_2.
  - apply position_None in Ep. rewrite fmap_None, IH. naive_solver.
Qed.

Lemma set_focused_spec c s :
  layout_ok s →
  let '(found, s') := set_focused_component c s in
  layout_ok s' ∧ components s' = components s ∧ (found = true ↔ c ∈ components s) ∧
  (found = true → focused_active_component s' = Some c) ∧ (found = false → s' = s).
Proof.
  intros [Hf Ht Hn Ha]. unfold set_focused_component.
  destruct (set_focused_from c 0 (tiles s)) as [[j l]|] eqn:E.
  - assert (c ∈ components s) as Hc.
    { destruct (decide (c ∈ components s)) as [|Hc]; [done|].
      apply (set_focused_from_None c 0) in Hc. unfold components in *. congruence. }
    destruct (set_focused_from_Some _ _ _ _ _ E Ht) as (k & -> & Hl & Hok & Hcs & Hact).
    simpl in *. split_and!; try done.
    split; simpl; [|done|unfold components; simpl; by rewrite Hcs|intros ?; apply Ha; lia].
    destruct (l !! k) eqn:Ek; [|done]. by apply lookup_lt_Some in Ek.
  - apply set_focused_from_None in E. split_and!; [done..| |done|done]. by split.
Qed.

(** Adding. *)
Lemma add_spec c s :
  layout_ok s →
  layout_ok (add_component_tab c s) ∧
  components (add_component_tab c s) ≡ₚ
    (if bool_decide (c ∈ components s) then components s else c :: components s) ∧
  focused_active_component (add_component_tab c s) = Some c.
Proof.
  intros Hok. unfold add_component_tab. pose proof (set_focused_spec c s Hok) as Hs.
  destruct (set_focused_component c s) as [found s1]. destruct Hs as (Hok1 & Hc1 & Hin & Hact & Hno).
  destruct found.
  - rewrite bool_decide_eq_true_2 by (by apply Hin). rewrite Hc1. split_and!; [done..|by apply Hact].
  - rewrite Hno by done. rewrite normalize_id by done.
    assert (c ∉ components s) as Hnc by (intros ?%Hin; done).
    rewrite bool_decide_eq_false_2 by done. destruct Hok as [Hf Ht Hn Ha].
    destruct (lookup_lt_is_Some_2 (tiles s) (focused_tile s) Hf) as [tile Et]. rewrite Et.
    assert (c ∉ WindowTileState.tabs tile) as Hnt.
    { intros ?. apply Hnc, elem_of_components. exists tile. split; [by eapply list_elem_of_lookup_2|done]. }
    unfold WindowTileState.add_tab. rewrite (proj2 (position_None c _) Hnt).
    set (tile' := WindowTileState.mk _ _).
    assert (components (s <| tiles := <[focused_tile s := tile']> (tiles s) |>) ≡ₚ c :: components s) as Hp.
    { apply (components_insert_perm s _ tile tile' [c]); [done|]. simpl. solve_Permutation. }
    split_and!; [split|done|]; simpl.
    + by rewrite length_insert.
    + apply Forall_insert; [done|]. unfold tile_ok. simpl. rewrite length_app. simpl. lia.
    + rewrite Hp. by constructor.
    + by rewrite length_insert.
    + unfold focused_active_component. simpl. rewrite list_lookup_insert_eq by done.
      change (WindowTileState.active_component tile' = Some c).
      unfold WindowTileState.active_component, tile'. simpl. rewrite length_app. simpl.
      rewrite Nat.add_sub. by rewrite lookup_app_r, Nat.sub_diag by lia.
Qed.

(** Removing. *)
Lemma filter_delete (c : ComponentId.t) l p :
  NoDup l → l !! p = Some c → delete p l = filter (λ d, d ≠ c) l.
Proof.
  intros Hn Hp. rewrite <- (take_drop_middle _ _ _ Hp) in Hn |- *.
  assert (p = length (take p l)) as Hl by (apply lookup_lt_Some in Hp; rewrite length_take; lia).
  rewrite Hl at 1. rewrite delete_middle, filter_app, filter_cons_False by naive_solver.
  apply NoDup_app in Hn as (_ & Hd & [Hc _]%NoDup_cons).
  f_equal; symmetry; apply filter_keeps_all; intros d Hin ->; [|done].
  apply (Hd c Hin). by left.
Qed.

Lemma tile_remove_spec c tile :
  tile_ok tile → NoDup (WindowTileState.tabs tile) →
  let tile' := (WindowTileState.remove_component c tile).2 in
  tile_ok tile' ∧ WindowTileState.tabs tile' = filter (λ d, d ≠ c) (WindowTileState.tabs tile) ∧
  (∀ d, WindowTileState.active_component tile = Some d → d ≠ c →
        WindowTileState.active_component tile' = Some d).
Proof.
  intros Hok Hn. unfold WindowTileState.remove_component.
  destruct (position c (WindowTileState.tabs tile)) as [p|] eqn:Ep; simpl.
  2:{ apply position_None in Ep. split_and!; [done| |done]. symmetry. apply filter_keeps_all.
      intros d Hd ->. done. }
  apply position_Some in Ep as [Hp Hlt].
  pose proof (length_delete (WindowTileState.tabs tile) p (mk_is_Some _ _ Hp)) as Hlen.
  rewrite (filter_delete c) in * by done.
  destruct tile as [l a]; unfold tile_ok, WindowTileState.active_component in *; simpl in *.
  assert (∀ j, filter (λ d, d ≠ c) l !! j = l !! (if decide (j < p) then j else S j)) as Hlk.
  { intros j. rewrite <- (filter_delete c l p) by done. rewrite list_lookup_delete.
    by destruct (decide (j < p)). }
  destruct (filter (λ d, d ≠ c) l) as [|x l'] eqn:El; simpl in *.
  { split_and!; [lia|done|]. intros d Hd Hdc.
    assert (d ∈ filter (λ d, d ≠ c) l) as Hin.
    { rewrite list_elem_of_filter. split; [done|]. by eapply list_elem_of_lookup_2. }
    rewrite El in Hin. by apply elem_of_nil in Hin. }
  split_and!; [|done|].
  - destruct (Nat.leb_spec (S (length l')) a); [lia|].
    destruct ((p <=? a) && (0 <? a)) eqn:Eb; lia.
  - intros d Hd Hdc. rewrite Hlk.
    assert (a ≠ p) as Hap by (intros ->; congruence).
    destruct (Nat.leb_spec (S (length l')) a).
    + assert (a = S (length l')) as -> by lia. destruct (decide _); [lia|].
      rewrite <- Hd. f_equal. lia.
    + destruct (Nat.leb_spec p a); simpl.
      * destruct (Nat.ltb_spec 0 a); [|lia]. destruct (decide _); [lia|]. rewrite <- Hd. f_equal. lia.
      * by destruct (decide (a < p)); [|lia].
Qed.

Lemma filter_bind (P : ComponentId.t → Prop) `{∀ d, Decision (P d)} (l : list WindowTileState.t) :
  filter P (l ≫= WindowTileState.tabs) = l ≫= λ tile, filter P (WindowTileState.tabs tile).
Proof. induction l as [|x l IH]; [done|]. by rewrite !bind_cons, filter_app, IH. Qed.

Lemma bind_filter_nonempty (l : list WindowTileState.t) :
  filter (λ tile, WindowTileState.tabs tile ≠ []) l ≫= WindowTileState.tabs
  = l ≫= WindowTileState.tabs.
Proof.
  induction l as [|x l IH]; [done|]. rewrite filter_cons, bind_cons. case_decide as Hx.
  - by rewrite bind_cons, IH.
  - by rewrite IH, Hx.
Qed.

Lemma nodup_tile s tile : NoDup (components s) → tile ∈ tiles s → NoDup (WindowTileState.tabs tile).
Proof.
  unfold components. destruct s as [ax f l]; simpl. intros Hn Hin. induction l as [|x l IH] in Hn, Hin |- *.
  - by apply elem_of_nil in Hin.
  - rewrite bind_cons in Hn. apply NoDup_app in Hn as (Hx & _ & Hl).
    apply elem_of_cons in Hin as [->|Hin]; [done|]. by apply IH.
Qed.

Lemma remove_spec c s :
  layout_ok s →
  layout_ok (remove_component c s) ∧
  components (remove_component c s) = filter (λ d, d ≠ c) (components s).
Proof.
  intros [Hf Ht Hn Ha]. unfold remove_component.
  set (l := (λ tile, (WindowTileState.remove_component c tile).2) <$> tiles s).
  assert (Forall tile_ok l ∧ (l ≫= WindowTileState.tabs) = filter (λ d, d ≠ c) (components s)) as [Hl Hc].
  { unfold l. clear Hf Ha. assert (∀ tile, tile ∈ tiles s → NoDup (WindowTileState.tabs tile)) as Hnd
      by (intros; by eapply nodup_tile).
    clear Hn. unfold components. rewrite filter_bind. revert Ht Hnd. generalize (tiles s) as ts.
    induction ts as [|x ts IH]; intros Ht Hnd; [done|]. apply Forall_cons in Ht as [Hx Hts].
    destruct (tile_remove_spec c x Hx (Hnd x ltac:(by left))) as (Hx' & Htabs & _).
    destruct IH as [IH1 IH2]; [done|intros; apply Hnd; by right|].
    rewrite fmap_cons, !bind_cons. split; [by constructor|]. by rewrite Htabs, IH2. }
  set (l' := if 1 <? length l then _ else _).
  assert (Forall tile_ok l' ∧ (l' ≫= WindowTileState.tabs) = filter (λ d, d ≠ c) (components s))
    as [Hl' Hc'].
  { unfold l'. destruct (1 <? length l); [|done]. split; [|by rewrite bind_filter_nonempty].
    rewrite Forall_forall in *. intros tile [_ Hin]%list_elem_of_filter. by apply Hl. }
  destruct (normalize_ok (s <| tiles := l' |>)) as (Hok & Hcs & _).
  - done.
  - unfold components. simpl. rewrite Hc'. by apply NoDup_filter.
  - split; [done|]. rewrite Hcs. unfold components at 1. simpl. by rewrite Hc'.
Qed.

(** Splitting. *)
Lemma take_active_spec tile :
  tile_ok tile →
  let '(moved, tile') := take_active tile in
  tile_ok tile' ∧ moved ++ WindowTileState.tabs tile' ≡ₚ WindowTileState.tabs tile.
Proof.
  intros Hok. unfold take_active, tile_ok in *. destruct tile as [l a]; simpl in *.
  destruct (Nat.ltb_spec 1 (length l)); [|done]. simpl.
  rewrite Nat.min_l by lia. assert (is_Some (l !! a)) as [x Hx] by (apply lookup_lt_is_Some; lia).
  rewrite Hx. simpl. pose proof (length_delete l a (mk_is_Some _ _ Hx)) as Hlen.
  split; [|by rewrite <- (delete_Permutation l a x)].
  destruct (Nat.leb_spec (length (delete a l)) a); lia.
Qed.

Lemma with_tabs_ok l : tile_ok (WindowTileState.with_tabs l).
Proof. unfold tile_ok. destruct l; simpl; lia. Qed.

Lemma split_spec axis s :
  layout_ok s →
  layout_ok (split_focused_tile axis s) ∧
  components (split_focused_tile axis s) ≡ₚ components s ∧
  tile_count (split_focused_tile axis s) = S (tile_count s) ∧
  split_axis (split_focused_tile axis s) = Some axis.
Proof.
  intros Hok. pose proof Hok as [Hf Ht Hn Ha]. unfold split_focused_tile. rewrite normalize_id by done.
  destruct (lookup_lt_is_Some_2 (tiles s) (focused_tile s) Hf) as [tile Et]. rewrite Et.
  assert (tile_ok tile) as Htile by (by eapply Forall_lookup_1).
  pose proof (take_active_spec tile Htile) as Hta. destruct (take_active tile) as [moved tile'].
  destruct Hta as [Htile' Hperm].
  set (l := <[focused_tile s := tile']> (tiles s)).
  set (l' := vec_insert (focused_tile s + 1) (WindowTileState.with_tabs moved) l).
  assert (l' ≡ₚ WindowTileState.with_tabs moved :: l) as Hv by apply vec_insert_Permutation.
  assert (l' ≫= WindowTileState.tabs ≡ₚ components s) as Hp.
  { rewrite Hv, bind_cons. simpl.
    change (l ≫= WindowTileState.tabs) with (components (s <| tiles := l |>)).
    unfold components. change (tiles (_ <| tiles := l |>)) with l. unfold l.
    rewrite (tabs_insert _ _ _ _ Et), (tabs_split _ _ _ Et), <- Hperm. solve_Permutation. }
  assert (Forall tile_ok l') as Hl'.
  { rewrite Hv. constructor; [apply with_tabs_ok|]. by apply Forall_insert. }
  assert (length l' = S (length (tiles s))) as Hlen.
  { rewrite Hv. simpl. unfold l. by rewrite length_insert. }
  destruct (normalize_ok (mk (Some axis) (focused_tile s + 1) l')) as (Hok' & Hcs & Htl).
  - done.
  - unfold components. simpl. by rewrite Hp.
  - unfold tile_count. rewrite Htl by (simpl; lia). simpl. rewrite Hcs. split_and!; [done|done|done|].
    unfold normalize. simpl. destruct l' as [|x l'']; [done|]. simpl in *.
    destruct (Nat.leb_spec (S (length l'')) (focused_tile s + 1)); simpl;
      destruct (Nat.leb_spec (S (length l'')) 1); simpl; (done || lia).
Qed.

(** Tabs. *)
Lemma on_focused_spec f s :
  layout_ok s →
  (∀ tile, tile_ok tile → tile_ok (f tile).2 ∧ WindowTileState.tabs (f tile).2 = WindowTileState.tabs tile) →
  layout_ok (on_focused f s).2 ∧ components (on_focused f s).2 = components s.
Proof.
  intros Hok Htf. pose proof Hok as [Hf Ht Hn Ha]. unfold on_focused. rewrite normalize_id by done.
  destruct (lookup_lt_is_Some_2 (tiles s) (focused_tile s) Hf) as [tile Et]. rewrite Et.
  destruct (Htf tile) as [Ho Hs]; [by eapply Forall_lookup_1|].
  destruct (f tile) as [r tile']; simpl in *.
  pose proof (components_insert s _ tile tile' Et Hs) as Hc. split; [|done].
  split; simpl; [by rewrite length_insert|by apply Forall_insert|by rewrite Hc|by rewrite length_insert].
Qed.

Lemma next_tab_ok tile : tile_ok tile →
  tile_ok (WindowTileState.focus_next_tab tile).2 ∧
  WindowTileState.tabs (WindowTileState.focus_next_tab tile).2 = WindowTileState.tabs tile.
Proof.
  intros Hok. unfold WindowTileState.focus_next_tab. destruct tile as [[|x l] a]; [done|].
  split; [|done]. unfold tile_ok. cbn [snd WindowTileState.tabs WindowTileState.active_tab update_field].
  pose proof (Nat.mod_upper_bound (a + 1) (length (x :: l))) as Hm. simpl length in *. lia.
Qed.

Lemma previous_tab_ok tile : tile_ok tile →
  tile_ok (WindowTileState.focus_previous_tab tile).2 ∧
  WindowTileState.tabs (WindowTileState.focus_previous_tab tile).2 = WindowTileState.tabs tile.
Proof.
  intros Hok. unfold WindowTileState.focus_previous_tab. destruct tile as [[|x l] a]; [done|].
  split; [|done]. unfold tile_ok in *. simpl in *. destruct (Nat.eqb_spec a 0); simpl; lia.
Qed.

(** What a call does to the components that are shown. *)
Definition effect (o : op) (l : list ComponentId.t) : list ComponentId.t :=
  match o with
  | Add c => if bool_decide (c ∈ l) then l else c :: l
  | Remove c => filter (λ d, d ≠ c) l
  | _ => l
  end.

Lemma new_ok : layout_ok new.
Proof. split; simpl; [lia|repeat constructor|constructor|done]. Qed.

Lemma step_spec o s : layout_ok s → layout_ok (step o s) ∧ components (step o s) ≡ₚ effect o (components s).
Proof.
  intros Hok. destruct o as [c|c|c|axis| |]; simpl.
  - by destruct (add_spec c s Hok) as (? & ? & _).
  - destruct (remove_spec c s Hok) as [? ->]. done.
  - pose proof (set_focused_spec c s Hok) as Hs. destruct (set_focused_component c s) as [b s'].
    destruct Hs as (? & Hc & _). simpl. by rewrite Hc.
  - by destruct (split_spec axis s Hok) as (? & ? & _).
  - destruct (on_focused_spec _ s Hok next_tab_ok) as [? Hc]. unfold focus_next_tab. by rewrite Hc.
  - destruct (on_focused_spec _ s Hok previous_tab_ok) as [? Hc]. unfold focus_previous_tab. by rewrite Hc.
Qed.

(** The workspace layout shows every component in exactly one tab.  After any
    sequence of launching, terminating, focusing, splitting and tab switching, from a new
    layout: there is a focused tile, every tile's active tab is one of its tabs, no
    component is in two places, a layout with one tile has no split axis, and the
    components shown are exactly those added and not removed. *)
Theorem layout_shows_each_component_once os :
  let s := foldl (λ s o, step o s) new os in
  layout_ok s ∧
  components s ≡ₚ foldl (λ l o, effect o l) [] os.
Proof.
  assert (∀ os s l, layout_ok s → components s ≡ₚ l →
    layout_ok (foldl (λ s o, step o s) s os) ∧
    components (foldl (λ s o, step o s) s os) ≡ₚ foldl (λ l o, effect o l) l os) as Hall.
  { induction os0 as [|o os0 IH]; intros s l Hok Hp; simpl; [done|].
    destruct (step_spec o s Hok) as [Hok' Hc]. apply IH; [done|]. rewrite Hc.
    destruct o; simpl; [|by rewrite Hp|done..].
    rewrite (bool_decide_ext (c ∈ components s) (c ∈ l)) by by rewrite Hp.
    destruct (bool_decide _); by rewrite Hp. }
  apply Hall; [apply new_ok|done].
Qed.

(** Launching or focusing a component makes it the active tab of the focused tile. *)
Theorem added_component_is_focused c s :
  layout_ok s → focused_active_component (add_component_tab c s) = Some c.
Proof. intros Hok. by destruct (add_spec c s Hok) as (_ & _ & ?). Qed.

(** Terminating a component that is not shown on top keeps what every tile shows. *)
Theorem removal_keeps_active_tabs c tile d :
  tile_ok tile → NoDup (WindowTileState.tabs tile) →
  WindowTileState.active_component tile = Some d → d ≠ c →
  WindowTileState.active_component (WindowTileState.remove_component c tile).2 = Some d.
Proof. intros Hok Hn Hd Hdc. destruct (tile_remove_spec c tile Hok Hn) as (_ & _ & H). by apply H. Qed.

(** But the focused tile is an index that is not moved when an earlier tile goes: the
    focus falls on another component. *)
Definition comp (n : N) : ComponentId.t := ComponentId.mk n.
Definition three_tiles : t :=
  step (Focus (comp 2)) (foldl (λ s o, step o s) new
    [Add (comp 1); Split SplitAxis.Vertical; Add (comp 2); Split SplitAxis.Vertical; Add (comp 3)]).

Theorem removing_a_tile_moves_the_focus :
  focused_active_component three_tiles = Some (comp 2) ∧
  focused_active_component (step (Remove (comp 1)) three_tiles) = Some (comp 3).
Proof. split; by vm_compute. Qed.
End LayoutSpec.
