(* ===== verification/Compositor.v ===== *)
(** * Desktop compositor ([services_gui_host])

    Windows on a surface of cells, drawn as characters or rasterized, whole or only inside a
    damaged rectangle; and the windows that a workspace snapshot becomes.  Coordinates are
    [usize] values in [N]; a text is a list of characters. *)

From S2P Require Import Prelude CoreTypes Editor Raster Views Layout.
Open Scope list_scope.
Open Scope N_scope.

(* services_gui_host/src/lib.rs:10-10 DESKTOP_BACKGROUND *)
Definition DESKTOP_BACKGROUND : N := 46.
(* services_gui_host/src/lib.rs:11-11 CURSOR_GLYPH *)
Definition CURSOR_GLYPH : N := 64.
(* services_gui_host/src/lib.rs:12-12 RASTER_CELL_WIDTH *)
Definition RASTER_CELL_WIDTH : N := BitmapFont.advance_x DESKTOP_FONT.
(* services_gui_host/src/lib.rs:13-13 RASTER_CELL_HEIGHT *)
Definition RASTER_CELL_HEIGHT : N := BitmapFont.glyph_height DESKTOP_FONT + 2.
(* services_gui_host/src/lib.rs:14-14 RASTER_BORDER_THICKNESS *)
Definition RASTER_BORDER_THICKNESS : N := 1.
(* services_gui_host/src/lib.rs:16-16 DESKTOP_BACKGROUND_COLOR *)
Definition DESKTOP_BACKGROUND_COLOR : RgbaColor.t := RgbaColor.new 12 18 28 255.
(* services_gui_host/src/lib.rs:17-17 WINDOW_FILL_COLOR *)
Definition WINDOW_FILL_COLOR : RgbaColor.t := RgbaColor.new 28 34 48 255.
(* services_gui_host/src/lib.rs:18-18 FOCUSED_BORDER_COLOR *)
Definition FOCUSED_BORDER_COLOR : RgbaColor.t := RgbaColor.new 52 211 153 255.
(* services_gui_host/src/lib.rs:19-19 UNFOCUSED_BORDER_COLOR *)
Definition UNFOCUSED_BORDER_COLOR : RgbaColor.t := RgbaColor.new 107 114 128 255.
(* services_gui_host/src/lib.rs:20-20 TEXT_COLOR *)
Definition TEXT_COLOR : RgbaColor.t := RgbaColor.new 226 232 240 255.
(* services_gui_host/src/lib.rs:21-21 CURSOR_COLOR *)
Definition CURSOR_COLOR : RgbaColor.t := RgbaColor.new 251 146 60 255.

Module SurfaceSize.
(* services_gui_host/src/lib.rs:23-34 SurfaceSize *)
Record t := new { width : N; height : N }.
End SurfaceSize.

Module SurfaceRect.
(* services_gui_host/src/lib.rs:36-54 SurfaceRect *)
Record t := new { x : N; y : N; width : N; height : N }.
End SurfaceRect.

Module DesktopWindowRole.
(* services_gui_host/src/lib.rs:56-72 DesktopWindowRole *)
Inductive t := Main | Status | Overlay | Palette | Notification | Modal.
End DesktopWindowRole.

Module DesktopWindowLayer.
(* services_gui_host/src/lib.rs:74-90 DesktopWindowLayer *)
Inductive t := Workspace | Overlay | Palette | Notification | Modal | System.
(* services_gui_host/src/lib.rs:93-101 DesktopWindowLayer::for_role *)
Definition for_role (r : DesktopWindowRole.t) : t :=
  match r with
  | DesktopWindowRole.Main | DesktopWindowRole.Status => Workspace
  | DesktopWindowRole.Overlay => Overlay
  | DesktopWindowRole.Palette => Palette
  | DesktopWindowRole.Notification => Notification
  | DesktopWindowRole.Modal => Modal
  end.
(* services_gui_host/src/lib.rs:103-112 DesktopWindowLayer::sort_key *)
Definition sort_key (l : t) : N :=
  match l with
  | Workspace => 0 | Overlay => 1 | Palette => 2 | Notification => 3 | Modal => 4 | System => 5
  end.
End DesktopWindowLayer.

Module DesktopTab.
(* services_gui_host/src/lib.rs:115-129 DesktopTab *)
Record t := new { label : Str.t; active : bool }.
End DesktopTab.

Module DesktopWindow.
(* services_gui_host/src/lib.rs:131-144 DesktopWindow *)
Record t := mk {
  frame : ViewFrame.t;
  rect : SurfaceRect.t;
  role : DesktopWindowRole.t;
  layer : DesktopWindowLayer.t;
  tabs : list DesktopTab.t;
  z_index : N;
  is_focused : bool
}.
#[global] Instance rebuild_t : Rebuild t := λ w,
  mk (frame w) (rect w) (role w) (layer w) (tabs w) (z_index w) (is_focused w).
(* services_gui_host/src/lib.rs:147-157 DesktopWindow::new *)
Definition new (frame : ViewFrame.t) (rect : SurfaceRect.t) : t :=
  mk frame rect DesktopWindowRole.Main DesktopWindowLayer.Workspace [] 0 false.
(* services_gui_host/src/lib.rs:159-163 DesktopWindow::with_role *)
Definition with_role (r : DesktopWindowRole.t) (w : t) : t :=
  w <| role := r |> <| layer := DesktopWindowLayer.for_role r |>.
(* services_gui_host/src/lib.rs:165-168 DesktopWindow::with_layer *)
Definition with_layer (l : DesktopWindowLayer.t) (w : t) : t := w <| layer := l |>.
(* services_gui_host/src/lib.rs:170-173 DesktopWindow::with_tabs *)
Definition with_tabs (l : list DesktopTab.t) (w : t) : t := w <| tabs := l |>.
(* services_gui_host/src/lib.rs:175-178 DesktopWindow::with_z_index *)
Definition with_z_index (z : N) (w : t) : t := w <| z_index := z |>.
(* services_gui_host/src/lib.rs:180-183 DesktopWindow::focused *)
Definition focused (w : t) : t := w <| is_focused := true |>.

(** The order of the key [(layer.sort_key(), z_index, view_id)]. *)
(* services_gui_host/src/lib.rs:316-322 Compositor::compose_desktop *)
Definition key_leb (v w : t) : bool :=
  let a := DesktopWindowLayer.sort_key (layer v) in
  let b := DesktopWindowLayer.sort_key (layer w) in
  (a <? b) || (a =? b) && ((z_index v <? z_index w) || (z_index v =? z_index w) &&
    (ViewId.uuid (ViewFrame.view_id (frame v)) <=? ViewId.uuid (ViewFrame.view_id (frame w)))).
End DesktopWindow.

Module SurfaceFrame.
(* services_gui_host/src/lib.rs:186-195 SurfaceFrame *)
Record t := mk {
  width : N;
  height : N;
  rows : list Str.t;
  content : Str.t;
  frame_count : N;
  timestamp_ns : N
}.
(** [row.len()] counts bytes. *)
(* services_gui_host/src/lib.rs:198-211 SurfaceFrame::from_rows *)
Definition from_rows (rows : list Str.t) (frame_count timestamp_ns : N) : t :=
  mk (foldr N.max 0 ((λ row, N.of_nat (Str.len row)) <$> rows)) (len rows) rows (Str.join rows)
     frame_count timestamp_ns.
End SurfaceFrame.

Module RasterSurfaceFrame.
(* services_gui_host/src/lib.rs:214-222 RasterSurfaceFrame *)
Record t := mk {
  width : N;
  height : N;
  pixels : list N;
  frame_count : N;
  timestamp_ns : N
}.
(* services_gui_host/src/lib.rs:225-233 RasterSurfaceFrame::new *)
Definition new (buffer : RgbaBuffer.t) (frame_count timestamp_ns : N) : t :=
  mk (RgbaBuffer.width buffer) (RgbaBuffer.height buffer) (RgbaBuffer.pixels buffer)
     frame_count timestamp_ns.
(* services_gui_host/src/lib.rs:235-247 RasterSurfaceFrame::pixel *)
Definition pixel (x y : N) (f : t) : outcome (option RgbaColor.t) :=
  if (width f <=? x) || (height f <=? y) then Return None else
  row ← mul_u64 y (width f);
  cell ← add_u64 row x;
  offset ← mul_u64 cell 4;
  r ← byte_at (pixels f) offset;
  g ← byte_at (pixels f) (offset + 1);
  b ← byte_at (pixels f) (offset + 2);
  a ← byte_at (pixels f) (offset + 3);
  Return (Some (RgbaColor.new r g b a)).
End RasterSurfaceFrame.

Module RasterRenderStats.
(* services_gui_host/src/lib.rs:250-258 RasterRenderStats *)
Record t := mk {
  frame_count : N;
  timestamp_ns : N;
  painted_windows : N;
  damage_rect : option RasterRect.t
}.
End RasterRenderStats.

(** The field [debug_info] of debug builds, which nothing here reads, is left out. *)
Module WorkspaceRenderSnapshot.
(* services_workspace_manager/src/lib.rs:3889-3917 WorkspaceRenderSnapshot *)
Record t := mk {
  focused_component : option ComponentId.t;
  main_view : option ViewFrame.t;
  status_view : option ViewFrame.t;
  composed_main_view : option ViewFrame.t;
  composed_status_view : option ViewFrame.t;
  layout : WorkspaceLayoutSnapshot.t;
  tiles : list WorkspaceTileRenderSnapshot.t;
  component_count : N;
  running_count : N;
  status_strip : Str.t;
  breadcrumbs : Str.t
}.
End WorkspaceRenderSnapshot.

(** ** Texts *)

(* services_gui_host/src/lib.rs:459-465 render_content *)
Definition render_content (c : ViewContent.t) : Str.t :=
  match c with
  | ViewContent.TextBuffer lines => Str.join lines
  | ViewContent.StatusLine text => text
  | ViewContent.Panel metadata => Str.of_string "panel: " ++ metadata
  end.

(* services_gui_host/src/lib.rs:467-479 render_content_lines *)
Definition render_content_lines (c : ViewContent.t) : list Str.t :=
  match c with
  | ViewContent.TextBuffer [] => [[]]
  | ViewContent.TextBuffer lines => lines
  | ViewContent.StatusLine text => [text]
  | ViewContent.Panel metadata => [Str.of_string "panel: " ++ metadata]
  end.

(* services_gui_host/src/lib.rs:481-487 window_title *)
Definition window_title (f : ViewFrame.t) : Str.t :=
  default (ViewKind.display (ViewFrame.kind f)) (ViewFrame.title f).

(** [join(" ")]. *)
Fixpoint join_space (l : list Str.t) : Str.t :=
  match l with
  | [] => []
  | [s] => s
  | s :: l => s ++ 32 :: join_space l
  end.

(* services_gui_host/src/lib.rs:497-508 render_tab_strip *)
Definition render_tab_strip (tabs : list DesktopTab.t) : Str.t :=
  join_space ((λ tab, if DesktopTab.active tab then 91 :: DesktopTab.label tab ++ [93]
                      else 40 :: DesktopTab.label tab ++ [41]) <$> tabs).

(* services_gui_host/src/lib.rs:489-495 window_chrome_label *)
Definition window_chrome_label (w : DesktopWindow.t) : Str.t :=
  match DesktopWindow.tabs w with
  | [] => 32 :: window_title (DesktopWindow.frame w) ++ [32]
  | tabs => 32 :: render_tab_strip tabs ++ [32]
  end.

(** ** Character canvases *)

Notation canvas := (list (list N)).

(* services_gui_host/src/lib.rs:694-700 put_char *)
Definition put_char (x y : N) (ch : N) (c : canvas) : canvas :=
  match c !! N.to_nat y with
  | Some row =>
      match row !! N.to_nat x with
      | Some _ => <[N.to_nat y := <[N.to_nat x := ch]> row]> c
      | None => c
      end
  | None => c
  end.

(** [for (i, ch) in text.enumerate() { put_char(canvas, x + 1 + i, y, ch) }] from [i] on. *)
Fixpoint put_text (x y i : N) (text : Str.t) (c : canvas) : outcome canvas :=
  match text with
  | [] => Return c
  | ch :: text =>
      x1 ← add_u64 x 1; px ← add_u64 x1 i;
      put_text x y (i + 1) text (put_char px y ch c)
  end.

(** The frame and the blank inside, cell by cell; [canvas[y][x]] is in range there. *)
(* services_gui_host/src/lib.rs:519-545 draw_window *)
Definition draw_frame (border : N) (r : SurfaceRect.t) (c : canvas) : outcome canvas :=
  fold_outcome (λ c dy,
    y ← add_u64 (SurfaceRect.y r) dy;
    if len c <=? y then Return c else
    fold_outcome (λ c dx,
      x ← add_u64 (SurfaceRect.x r) dx;
      row ← expect (c !! N.to_nat y);
      if len row <=? x then Return c else
      let edge := (dy =? 0) || (dy + 1 =? SurfaceRect.height r)
                  || (dx =? 0) || (dx + 1 =? SurfaceRect.width r) in
      Return (<[N.to_nat y := <[N.to_nat x := if edge then border else 32]> row]> c))
      (range 0 (SurfaceRect.width r)) c)
    (range 0 (SurfaceRect.height r)) c.

(** The lines of the content from line [i] on. *)
(* services_gui_host/src/lib.rs:560-573 draw_window *)
Fixpoint draw_lines (r : SurfaceRect.t) (inner_width i : N) (lines : list Str.t) (c : canvas)
    : outcome canvas :=
  match lines with
  | [] => Return c
  | line :: lines =>
      y1 ← add_u64 (SurfaceRect.y r) 1; y ← add_u64 y1 i;
      if len c <=? y then Return c else
      c ← put_text (SurfaceRect.x r) y 0 (take (N.to_nat inner_width) line) c;
      draw_lines r inner_width (i + 1) lines c
  end.

(* services_gui_host/src/lib.rs:575-584 draw_window *)
Definition draw_cursor (r : SurfaceRect.t) (inner_width inner_height : N)
    (cursor : option CursorPosition.t) (c : canvas) : outcome canvas :=
  match cursor with
  | Some cur =>
      if (CursorPosition.line cur <? inner_height) && (CursorPosition.column cur <? inner_width) then
        x1 ← add_u64 (SurfaceRect.x r) 1; x ← add_u64 x1 (CursorPosition.column cur);
        y1 ← add_u64 (SurfaceRect.y r) 1; y ← add_u64 y1 (CursorPosition.line cur);
        Return (put_char x y CURSOR_GLYPH c)
      else Return c
  | None => Return c
  end.

(* services_gui_host/src/lib.rs:510-585 draw_window *)
Definition draw_window (c : canvas) (w : DesktopWindow.t) : outcome canvas :=
  let r := DesktopWindow.rect w in
  if (SurfaceRect.width r =? 0) || (SurfaceRect.height r =? 0)
     || match c with [] | [] :: _ => true | _ => false end
  then Return c else
  let border := if DesktopWindow.is_focused w then 35 else 43 in
  c ← draw_frame border r c;
  c ← (if 2 <? SurfaceRect.width r then
         put_text (SurfaceRect.x r) (SurfaceRect.y r) 0
           (take (N.to_nat (SurfaceRect.width r - 2)) (window_chrome_label w)) c
       else Return c);
  let inner_width := saturating_sub (SurfaceRect.width r) 2 in
  let inner_height := saturating_sub (SurfaceRect.height r) 2 in
  if (inner_width =? 0) || (inner_height =? 0) then Return c else
  let lines := take (N.to_nat inner_height)
                 (render_content_lines (ViewFrame.content (DesktopWindow.frame w))) in
  c ← draw_lines r inner_width 0 lines c;
  draw_cursor r inner_width inner_height (ViewFrame.cursor (DesktopWindow.frame w)) c.

(** ** Rasterized windows *)

(* services_gui_host/src/lib.rs:661-668 pixel_rect *)
Definition pixel_rect (r : SurfaceRect.t) : RasterRect.t :=
  RasterRect.new (saturating_mul (SurfaceRect.x r) RASTER_CELL_WIDTH)
    (saturating_mul (SurfaceRect.y r) RASTER_CELL_HEIGHT)
    (saturating_mul (SurfaceRect.width r) RASTER_CELL_WIDTH)
    (saturating_mul (SurfaceRect.height r) RASTER_CELL_HEIGHT).

(* services_gui_host/src/lib.rs:670-677 window_chrome_rect *)
Definition window_chrome_rect (r : RasterRect.t) : outcome RasterRect.t :=
  x ← add_u64 (RasterRect.x r) RASTER_BORDER_THICKNESS;
  y ← add_u64 (RasterRect.y r) RASTER_BORDER_THICKNESS;
  Return (RasterRect.new x y (saturating_sub (RasterRect.width r) (RASTER_BORDER_THICKNESS * 2))
            (saturating_sub RASTER_CELL_HEIGHT RASTER_BORDER_THICKNESS)).

(* services_gui_host/src/lib.rs:679-692 window_content_rect *)
Definition window_content_rect (r : RasterRect.t) : outcome (option RasterRect.t) :=
  y0 ← add_u64 (RasterRect.y r) RASTER_CELL_HEIGHT;
  y ← add_u64 y0 RASTER_BORDER_THICKNESS;
  bottom ← add_u64 (RasterRect.y r) (RasterRect.height r);
  if bottom <=? y then Return None else
  x ← add_u64 (RasterRect.x r) RASTER_BORDER_THICKNESS;
  h ← sub_u64 (bottom - y) RASTER_BORDER_THICKNESS;
  Return (Some (RasterRect.new x y
    (saturating_sub (RasterRect.width r) (RASTER_BORDER_THICKNESS * 2)) h)).

Section with_target.
Context {T : Type} `{RenderTarget T}.

(** The lines of the content from line [i] on, on a target of height [target_height]. *)
(* services_gui_host/src/lib.rs:635-645 raster_window *)
Fixpoint raster_lines (rect : RasterRect.t) (line_origin_y limit i : N) (lines : list Str.t) (t : T) : outcome T :=
  match lines with
  | [] => Return t
  | line :: lines =>
      dy ← mul_u64 i RASTER_CELL_HEIGHT;
      y ← add_u64 line_origin_y dy;
      if limit <=? y then Return t else
      x ← add_u64 (RasterRect.x rect) 2;
      t ← draw_text_with_font x y line DESKTOP_FONT TEXT_COLOR t;
      raster_lines rect line_origin_y limit (i + 1) lines t
  end.

(* services_gui_host/src/lib.rs:647-654 raster_window *)
Definition raster_cursor (r : RasterRect.t) (cursor : option CursorPosition.t) (t : T) : outcome T :=
  match cursor with
  | None => Return t
  | Some cur =>
      x0 ← add_u64 (RasterRect.x r) RASTER_CELL_WIDTH; x1 ← add_u64 x0 2;
      dx ← mul_u64 (CursorPosition.column cur) RASTER_CELL_WIDTH; cursor_x ← add_u64 x1 dx;
      y0 ← add_u64 (RasterRect.y r) RASTER_CELL_HEIGHT; y1 ← add_u64 y0 1;
      dy ← mul_u64 (CursorPosition.line cur) RASTER_CELL_HEIGHT; cursor_y ← add_u64 y1 dy;
      fill_rect (RasterRect.new cursor_x cursor_y 4 (saturating_sub RASTER_CELL_HEIGHT 2))
        CURSOR_COLOR t
  end.
End with_target.

Section raster_window.
Context {T : Type} `{RenderTarget T}.

(** The content: its lines and the cursor, through one scissor. *)
(* services_gui_host/src/lib.rs:632-654 raster_window *)
Definition raster_content (w : DesktopWindow.t) (rect : RasterRect.t) (limit : N)
    (s : ScissorTarget.t T) : outcome (ScissorTarget.t T) :=
  y0 ← add_u64 (RasterRect.y rect) RASTER_CELL_HEIGHT; line_origin_y ← add_u64 y0 2;
  let lines := take (N.to_nat (saturating_sub (SurfaceRect.height (DesktopWindow.rect w)) 2))
                 (render_content_lines (ViewFrame.content (DesktopWindow.frame w))) in
  s ← raster_lines rect line_origin_y limit 0 lines s;
  raster_cursor rect (ViewFrame.cursor (DesktopWindow.frame w)) s.

(* services_gui_host/src/lib.rs:587-659 raster_window *)
Definition raster_window (w : DesktopWindow.t) (damage_rect : option RasterRect.t) (t : T)
    : outcome (bool * T) :=
  let rect := pixel_rect (DesktopWindow.rect w) in
  if (RasterRect.width rect =? 0) || (RasterRect.height rect =? 0) then Return (false, t) else
  clipped ← (match damage_rect with
             | Some damage => RasterRect.intersect rect damage
             | None => Return (Some rect)
             end);
  match clipped with
  | None => Return (false, t)
  | Some clipped_rect =>
      t ← ScissorTarget.within clipped_rect (λ s,
            s ← fill_rect rect WINDOW_FILL_COLOR s;
            draw_border rect RASTER_BORDER_THICKNESS
              (if DesktopWindow.is_focused w then FOCUSED_BORDER_COLOR else UNFOCUSED_BORDER_COLOR) s) t;
      let chrome_label := window_chrome_label w in
      chrome ← window_chrome_rect rect;
      chrome_clip ← RasterRect.intersect chrome clipped_rect;
      t ← (match chrome_clip with
           | None => Return t
           | Some chrome_rect =>
               ScissorTarget.within chrome_rect (λ s,
                 x ← add_u64 (RasterRect.x rect) 2; y ← add_u64 (RasterRect.y rect) 2;
                 draw_text_with_font x y chrome_label DESKTOP_FONT TEXT_COLOR s) t
           end);
      content ← window_content_rect rect;
      t ← (match content with
           | None => Return t
           | Some content_rect =>
               content_clip ← RasterRect.intersect content_rect clipped_rect;
               match content_clip with
               | None => Return t
               | Some content_clip =>
                   ScissorTarget.within content_clip (raster_content w rect (target_height t)) t
               end
           end);
      Return (true, t)
  end.
End raster_window.

(** ** The compositor *)

Definition latest_timestamp (ts : list N) : N := foldr N.max 0 ts.

Module Compositor.

(** [trim_end_matches('\n')]. *)
Fixpoint drop_newlines (s : Str.t) : Str.t :=
  match s with 10 :: s => drop_newlines s | _ => s end.
Definition trim_end_newlines (s : Str.t) : Str.t := reverse (drop_newlines (reverse s)).

(* services_gui_host/src/lib.rs:274-303 Compositor::compose *)
Definition compose (frames : list ViewFrame.t) : SurfaceFrame.t :=
  let frames := stable_sort (λ f g, ViewId.uuid (ViewFrame.view_id f)
                                    <=? ViewId.uuid (ViewFrame.view_id g)) frames in
  let output := frames ≫= λ frame,
    91 :: window_title frame ++ [93; 10] ++ render_content (ViewFrame.content frame) ++ [10] in
  SurfaceFrame.from_rows (Str.lines (trim_end_newlines output)) (len frames)
    (latest_timestamp (ViewFrame.timestamp_ns <$> frames)).

(* services_gui_host/src/lib.rs:305-339 Compositor::compose_desktop *)
Definition compose_desktop (size : SurfaceSize.t) (windows : list DesktopWindow.t)
    : outcome SurfaceFrame.t :=
  let c := replicate (N.to_nat (SurfaceSize.height size))
             (replicate (N.to_nat (SurfaceSize.width size)) DESKTOP_BACKGROUND) in
  let windows := stable_sort DesktopWindow.key_leb windows in
  c ← fold_outcome draw_window windows c;
  Return (SurfaceFrame.from_rows c (len windows)
    (latest_timestamp ((ViewFrame.timestamp_ns ∘ DesktopWindow.frame) <$> windows))).

Section render.
Context {T : Type} `{RenderTarget T}.

(* services_gui_host/src/lib.rs:389-394 Compositor::render_desktop_to_target_with_damage *)
Definition raster_windows (damage : option RasterRect.t) (windows : list DesktopWindow.t)
    (nt : N * T) : outcome (N * T) :=
  fold_outcome (λ '(n, t) w,
    '(painted, t) ← raster_window w damage t;
    Return (if (painted : bool) then n + 1 else n, t)) windows nt.

(* services_gui_host/src/lib.rs:365-406 Compositor::render_desktop_to_target_with_damage *)
Definition render_desktop_to_target_with_damage (windows : list DesktopWindow.t)
    (damage_rect : option RasterRect.t) (t : T) : outcome (RasterRenderStats.t * T) :=
  let target_bounds := RasterRect.new 0 0 (target_width t) (target_height t) in
  damage ← (match damage_rect with
            | Some rect => RasterRect.intersect rect target_bounds
            | None => Return None
            end);
  t ← (match damage with
       | Some rect => fill_rect rect DESKTOP_BACKGROUND_COLOR t
       | None => clear DESKTOP_BACKGROUND_COLOR t
       end);
  let windows := stable_sort DesktopWindow.key_leb windows in
  '(painted_windows, t) ← raster_windows damage windows (0, t);
  Return (RasterRenderStats.mk (len windows)
            (latest_timestamp ((ViewFrame.timestamp_ns ∘ DesktopWindow.frame) <$> windows))
            painted_windows damage, t).

(* services_gui_host/src/lib.rs:356-363 Compositor::render_desktop_to_target *)
Definition render_desktop_to_target (windows : list DesktopWindow.t) (t : T)
    : outcome (RasterRenderStats.t * T) :=
  render_desktop_to_target_with_damage windows None t.
End render.

(* services_gui_host/src/lib.rs:341-354 Compositor::compose_desktop_rgba *)
Definition compose_desktop_rgba (size : SurfaceSize.t) (windows : list DesktopWindow.t)
    : outcome RasterSurfaceFrame.t :=
  buffer ← RgbaBuffer.new (saturating_mul (SurfaceSize.width size) RASTER_CELL_WIDTH)
             (saturating_mul (SurfaceSize.height size) RASTER_CELL_HEIGHT) DESKTOP_BACKGROUND_COLOR;
  '(stats, buffer) ← render_desktop_to_target windows buffer;
  Return (RasterSurfaceFrame.new buffer (RasterRenderStats.frame_count stats)
            (RasterRenderStats.timestamp_ns stats)).
End Compositor.

(** ** Workspace snapshots as windows *)

(* services_gui_host/src/lib.rs:810-825 partition_extent *)
Definition partition_extent (total count : N) : list (N * N) :=
  if count =? 0 then [] else
  let base := total / count in
  let remainder := total mod count in
  (foldl (λ '(slices, offset) index,
     let size := base + N.b2n (index <? remainder) in
     (slices ++ [(offset, size)], offset + size)) ([], 0) (range 0 count)).1.

(* services_gui_host/src/lib.rs:794-800 partition_rects_vertical *)
Definition partition_rects_vertical (size : SurfaceSize.t) (count : N) : list SurfaceRect.t :=
  (λ '(x, width), SurfaceRect.new x 0 width (SurfaceSize.height size))
    <$> partition_extent (SurfaceSize.width size) count.
(* services_gui_host/src/lib.rs:802-808 partition_rects_horizontal *)
Definition partition_rects_horizontal (size : SurfaceSize.t) (count : N) : list SurfaceRect.t :=
  (λ '(y, height), SurfaceRect.new 0 y (SurfaceSize.width size) height)
    <$> partition_extent (SurfaceSize.height size) count.

(* services_gui_host/src/lib.rs:771-792 tile_window_tabs *)
Definition tile_window_tabs (tile : WorkspaceTileRenderSnapshot.t) (frame : ViewFrame.t)
    : list DesktopTab.t :=
  let active_label := default (Str.of_string "Active") (ViewFrame.title frame) in
  imap (λ index component_id,
    let active := bool_decide (Some component_id = WorkspaceTileRenderSnapshot.active_component tile) in
    let label := if active then active_label
                 else Str.of_string "Tab " ++ Str.of_string (pretty (N.of_nat index + 1)) in
    DesktopTab.new label active) (WorkspaceTileRenderSnapshot.tabs tile).

(** [drawn] is the identifier of the view of an empty tile. *)
(* services_gui_host/src/lib.rs:736-769 tile_window_frame *)
Definition tile_window_frame (drawn : ViewId.t) (tile : WorkspaceTileRenderSnapshot.t)
    (tile_index : nat) : ViewFrame.t * DesktopWindowRole.t * list DesktopTab.t :=
  let '(frame, role) :=
    match WorkspaceTileRenderSnapshot.main_view tile, WorkspaceTileRenderSnapshot.status_view tile with
    | Some frame, _ => (frame, DesktopWindowRole.Main)
    | None, Some frame => (frame, DesktopWindowRole.Status)
    | None, None =>
        (ViewFrame.new drawn ViewKind.Panel 1 (ViewContent.panel (Str.of_string "[empty tile]")) 0,
         DesktopWindowRole.Main)
    end in
  let number := Str.of_string (pretty (N.of_nat tile_index + 1)) in
  let count := length (WorkspaceTileRenderSnapshot.tabs tile) in
  let frame :=
    match ViewFrame.title frame with
    | Some _ => frame
    | None =>
        ViewFrame.with_title
          (if (1 <? count)%nat
           then Str.of_string "Tile " ++ number ++ Str.of_string " ["
                ++ Str.of_string (pretty (N.of_nat count)) ++ Str.of_string " tabs]"
           else Str.of_string "Tile " ++ number) frame
    end in
  (frame, role, tile_window_tabs tile frame).

(* services_gui_host/src/lib.rs:702-734 workspace_tile_windows *)
Definition workspace_tile_windows (drawn : nat → ViewId.t) (size : SurfaceSize.t)
    (snapshot : WorkspaceRenderSnapshot.t) : list DesktopWindow.t :=
  let tiles := stable_sort (λ a b, (WorkspaceTileRenderSnapshot.tile_index a
                                    <=? WorkspaceTileRenderSnapshot.tile_index b)%nat)
                 (WorkspaceRenderSnapshot.tiles snapshot) in
  let rects :=
    match WorkspaceLayoutSnapshot.split_axis (WorkspaceRenderSnapshot.layout snapshot) with
    | Some SplitAxis.Vertical => partition_rects_vertical size (len tiles)
    | _ => partition_rects_horizontal size (len tiles)
    end in
  imap (λ i '(tile, rect),
    let index := WorkspaceTileRenderSnapshot.tile_index tile in
    let '(frame, role, tabs) := tile_window_frame (drawn i) tile index in
    let window :=
      DesktopWindow.with_z_index (N.of_nat index)
        (DesktopWindow.with_tabs tabs
           (DesktopWindow.with_role role (DesktopWindow.new frame rect))) in
    if WorkspaceTileRenderSnapshot.is_focused tile then DesktopWindow.focused window else window)
    (zip tiles rects).

(* services_gui_host/src/lib.rs:408-432 Compositor::desktop_windows_from_workspace_snapshot *)
Definition desktop_windows_from_workspace_snapshot (drawn : nat → ViewId.t) (size : SurfaceSize.t)
    (snapshot : WorkspaceRenderSnapshot.t) : list DesktopWindow.t :=
  match WorkspaceRenderSnapshot.tiles snapshot with
  | _ :: _ => workspace_tile_windows drawn size snapshot
  | [] =>
      option_list ((λ frame, DesktopWindow.focused (DesktopWindow.new frame
          (SurfaceRect.new 0 0 (SurfaceSize.width size) (SurfaceSize.height size))))
        <$> WorkspaceRenderSnapshot.main_view snapshot)
  end.

(* services_gui_host/src/lib.rs:434-444 Compositor::compose_workspace_snapshot *)
Definition compose_workspace_snapshot (drawn : nat → ViewId.t) (size : SurfaceSize.t)
    (snapshot : WorkspaceRenderSnapshot.t) : outcome SurfaceFrame.t :=
  Compositor.compose_desktop size (desktop_windows_from_workspace_snapshot drawn size snapshot).
(* services_gui_host/src/lib.rs:446-456 Compositor::compose_workspace_snapshot_rgba *)
Definition compose_workspace_snapshot_rgba (drawn : nat → ViewId.t) (size : SurfaceSize.t)
    (snapshot : WorkspaceRenderSnapshot.t) : outcome RasterSurfaceFrame.t :=
  Compositor.compose_desktop_rgba size (desktop_windows_from_workspace_snapshot drawn size snapshot).
