(* ===== verification/CompositorProps.v ===== *)
(** * Properties of the compositor

    Redrawing a damaged rectangle gives, pixel for pixel, what redrawing everything gives
    there and leaves the rest alone; tiles partition the surface; and the character canvas
    keeps its shape. *)

From S2P Require Import Prelude CoreTypes Editor Raster RasterProps Views Layout Compositor.
Open Scope list_scope.
Open Scope N_scope.

(** ** Damage *)
Module DamageSpec.
Import RectSpec Paint.

Lemma return_bind {A B} (a : A) (f : A → outcome B) : (Return a ≫= f) = f a.
Proof. done. Qed.

(** A rectangle or nothing, as a set of points. *)
Definition inside_opt (o : option RasterRect.t) (x y : N) : bool :=
  match o with Some r => inside r x y | None => false end.
Definition opt_ok (o : option RasterRect.t) : Prop :=
  match o with
  | Some r => rect_ok r ∧ 0 < RasterRect.width r ∧ 0 < RasterRect.height r
  | None => True
  end.

Lemma intersect_opt r s :
  rect_ok r → rect_ok s →
  ∃ o, RasterRect.intersect r s = Return o ∧ opt_ok o ∧
    ∀ x y, inside_opt o x y = inside r x y && inside s x y.
Proof.
  intros Hr Hs. unfold RasterRect.intersect.
  rewrite (right_ok r Hr), (right_ok s Hs), (bottom_ok r Hr), (bottom_ok s Hs). simpl.
  destruct (_ || _) eqn:E.
  - exists None. split_and!; [done..|]. intros x y. simpl. symmetry. apply not_true_iff_false.
    rewrite andb_true_iff, !inside_iff. apply orb_true_iff in E as [E|E]; apply N.leb_le in E; lia.
  - apply orb_false_iff in E as [E1 E2]. apply N.leb_gt in E1, E2.
    eexists. split; [done|]. destruct Hr, Hs. split; [simpl; split; [split; simpl; lia|lia]|].
    intros x y. apply eq_true_iff_eq. rewrite andb_true_iff. simpl. rewrite !inside_iff. simpl. lia.
Qed.

(** A non-empty rectangle has a point. *)
Lemma opt_ok_point r : opt_ok (Some r) → inside r (RasterRect.x r) (RasterRect.y r) = true.
Proof. intros (_ & ? & ?). apply inside_iff. lia. Qed.

(** The part of some writes that an optional scissor lets through; without a scissor the
    writes are not computed. *)
Definition clipped_part (o : option RasterRect.t) (m : outcome (list write)) : outcome (list write) :=
  match o with None => Return [] | Some r => ws ← m; Return (clip r ws) end.

Lemma clip_ext r s d ws :
  (∀ x y, inside r x y = inside s x y && inside d x y) → clip r ws = clip d (clip s ws).
Proof.
  intros He. unfold clip. rewrite list_filter_filter. apply list_filter_iff. intros w.
  rewrite He, andb_true_iff. tauto.
Qed.

Lemma clip_none s d ws :
  (∀ x y, inside s x y && inside d x y = false) → clip d (clip s ws) = [].
Proof.
  intros He. apply elem_of_nil_inv. intros w. unfold clip. rewrite !list_elem_of_filter.
  intros (Hd & Hs & _). specialize (He (wx w) (wy w)). by rewrite Hd, Hs in He.
Qed.

Lemma clip_app r ws ws' : clip r (ws ++ ws') = clip r ws ++ clip r ws'.
Proof. apply filter_app. Qed.

(** Clipping further by [d]: the same writes, clipped. *)
Lemma clipped_part_damage o o' d m ws :
  opt_ok o' → (∀ x y, inside_opt o' x y = inside_opt o x y && inside d x y) →
  clipped_part o m = Return ws → clipped_part o' m = Return (clip d ws).
Proof.
  intros Ho He. destruct o as [s|]; simpl in *.
  - intros (ws0 & -> & [= <-])%bind_Return. destruct o' as [r|]; simpl in *.
    + by rewrite (clip_ext r s d).
    + by rewrite clip_none.
  - intros [= <-]. destruct o' as [r|]; [|done]. exfalso.
    pose proof (opt_ok_point r Ho). specialize (He (RasterRect.x r) (RasterRect.y r)).
    simpl in He. congruence.
Qed.

(** The writes of the lines of a window, of its cursor and of the whole window, on a
    target of size [w] by [h]. *)
Fixpoint lines_writes (w h : N) (rect : RasterRect.t) (line_origin_y limit i : N)
    (lines : list Str.t) : outcome (list write) :=
  match lines with
  | [] => Return []
  | line :: lines =>
      dy ← mul_u64 i RASTER_CELL_HEIGHT;
      y ← add_u64 line_origin_y dy;
      if limit <=? y then Return [] else
      x ← add_u64 (RasterRect.x rect) 2;
      ws ← text_writes w h x y line DESKTOP_FONT TEXT_COLOR;
      ws' ← lines_writes w h rect line_origin_y limit (i + 1) lines;
      Return (ws ++ ws')
  end.

Definition cursor_writes (w h : N) (r : RasterRect.t) (cursor : option CursorPosition.t)
    : outcome (list write) :=
  match cursor with
  | None => Return []
  | Some cur =>
      x0 ← add_u64 (RasterRect.x r) RASTER_CELL_WIDTH; x1 ← add_u64 x0 2;
      dx ← mul_u64 (CursorPosition.column cur) RASTER_CELL_WIDTH; cursor_x ← add_u64 x1 dx;
      y0 ← add_u64 (RasterRect.y r) RASTER_CELL_HEIGHT; y1 ← add_u64 y0 1;
      dy ← mul_u64 (CursorPosition.line cur) RASTER_CELL_HEIGHT; cursor_y ← add_u64 y1 dy;
      Return (fill_writes w h (RasterRect.new cursor_x cursor_y 4 (saturating_sub RASTER_CELL_HEIGHT 2))
        CURSOR_COLOR)
  end.

Definition content_writes (w h : N) (win : DesktopWindow.t) (rect : RasterRect.t) : outcome (list write) :=
  y0 ← add_u64 (RasterRect.y rect) RASTER_CELL_HEIGHT; line_origin_y ← add_u64 y0 2;
  let lines := take (N.to_nat (saturating_sub (SurfaceRect.height (DesktopWindow.rect win)) 2))
                 (render_content_lines (ViewFrame.content (DesktopWindow.frame win))) in
  ws ← lines_writes w h rect line_origin_y h 0 lines;
  ws' ← cursor_writes w h rect (ViewFrame.cursor (DesktopWindow.frame win));
  Return (ws ++ ws').

Definition frame_writes (w h : N) (win : DesktopWindow.t) (rect : RasterRect.t) : outcome (list write) :=
  ws ← border_writes w h rect RASTER_BORDER_THICKNESS
         (if DesktopWindow.is_focused win then FOCUSED_BORDER_COLOR else UNFOCUSED_BORDER_COLOR);
  Return (fill_writes w h rect WINDOW_FILL_COLOR ++ ws).

Definition label_writes (w h : N) (win : DesktopWindow.t) (rect : RasterRect.t) : outcome (list write) :=
  x ← add_u64 (RasterRect.x rect) 2; y ← add_u64 (RasterRect.y rect) 2;
  text_writes w h x y (window_chrome_label win) DESKTOP_FONT TEXT_COLOR.

Definition window_writes (w h : N) (win : DesktopWindow.t) (damage : option RasterRect.t)
    : outcome (bool * list write) :=
  let rect := pixel_rect (DesktopWindow.rect win) in
  if (RasterRect.width rect =? 0) || (RasterRect.height rect =? 0) then Return (false, []) else
  clipped ← (match damage with
             | Some d => RasterRect.intersect rect d
             | None => Return (Some rect)
             end);
  match clipped with
  | None => Return (false, [])
  | Some clipped_rect =>
      fw ← clipped_part (Some clipped_rect) (frame_writes w h win rect);
      chrome ← window_chrome_rect rect;
      chrome_clip ← RasterRect.intersect chrome clipped_rect;
      lw ← clipped_part chrome_clip (label_writes w h win rect);
      content ← window_content_rect rect;
      content_clip ← (match content with
                      | None => Return None
                      | Some content_rect => RasterRect.intersect content_rect clipped_rect
                      end);
      cw ← clipped_part content_clip (content_writes w h win rect);
      Return (true, fw ++ lw ++ cw)
  end.

Section painting.
Context `{PaintSpec T}.
Implicit Types t : T.

Lemma raster_lines_paint rect line_origin_y limit i lines t :
  target_ok t →
  raster_lines rect line_origin_y limit i lines t
  = paint_outcome (lines_writes (target_width t) (target_height t) rect line_origin_y limit i lines) t.
Proof.
  revert i t. induction lines as [|line lines IH]; intros i t Ht; simpl; [done|].
  destruct (mul_u64 i RASTER_CELL_HEIGHT) as [dy| |]; simpl; [|done..].
  destruct (add_u64 line_origin_y dy) as [y| |]; simpl; [|done..].
  destruct (limit <=? y); [done|].
  destruct (add_u64 (RasterRect.x rect) 2) as [x| |]; simpl; [|done..].
  rewrite draw_text_paint by done.
  destruct (text_writes _ _ x y line DESKTOP_FONT TEXT_COLOR) as [ws| |]; simpl; [|done..].
  apply (paint_then ws); [done|]. intros t' Ht' Hw Hh. rewrite IH by done. by rewrite Hw, Hh.
Qed.

Lemma raster_cursor_paint r cursor t :
  raster_cursor r cursor t
  = paint_outcome (cursor_writes (target_width t) (target_height t) r cursor) t.
Proof.
  unfold raster_cursor, cursor_writes. destruct cursor as [cur|]; [|done].
  do 8 (apply paint_outcome_bind; intros ?). apply fill_rect_paint.
Qed.
End painting.

Section windows.
Context `{PaintSpec T}.
Implicit Types t : T.

Lemma raster_content_paint win rect t r :
  target_ok t → rect_ok r →
  ScissorTarget.within r (raster_content win rect (target_height t)) t
  = paint_outcome (clipped_part (Some r) (content_writes (target_width t) (target_height t) win rect)) t.
Proof.
  intros Ht Hr. apply within_paint; [done|]. unfold raster_content, content_writes.
  destruct (add_u64 (RasterRect.y rect) _) as [y0| |]; simpl; [|done..].
  destruct (add_u64 y0 2) as [y1| |]; simpl; [|done..].
  rewrite raster_lines_paint by done. simpl.
  destruct (lines_writes _ _ rect y1 _ 0 _) as [ws| |]; simpl; [|done..].
  rewrite (paint_then ws (cursor_writes (target_width t) (target_height t) rect
    (ViewFrame.cursor (DesktopWindow.frame win)))); [done..|].
  intros s Hs Hw Hh. rewrite raster_cursor_paint. simpl in *. by rewrite Hw, Hh.
Qed.

Lemma raster_frame_paint win rect t r :
  target_ok t → rect_ok r →
  ScissorTarget.within r (λ s,
    s ← fill_rect rect WINDOW_FILL_COLOR s;
    draw_border rect RASTER_BORDER_THICKNESS
      (if DesktopWindow.is_focused win then FOCUSED_BORDER_COLOR else UNFOCUSED_BORDER_COLOR) s) t
  = paint_outcome (clipped_part (Some r) (frame_writes (target_width t) (target_height t) win rect)) t.
Proof.
  intros Ht Hr. apply within_paint; [done|]. unfold frame_writes. rewrite fill_rect_paint. simpl.
  set (bw := border_writes _ _ _ _ _).
  rewrite (paint_then _ bw); [by destruct bw|done|].
  intros s Hs Hw Hh. rewrite draw_border_paint by done. simpl in *. by rewrite Hw, Hh.
Qed.

Lemma raster_label_paint win rect t r :
  target_ok t → rect_ok r →
  ScissorTarget.within r (λ s,
    x ← add_u64 (RasterRect.x rect) 2; y ← add_u64 (RasterRect.y rect) 2;
    draw_text_with_font x y (window_chrome_label win) DESKTOP_FONT TEXT_COLOR s) t
  = paint_outcome (clipped_part (Some r) (label_writes (target_width t) (target_height t) win rect)) t.
Proof.
  intros Ht Hr. apply within_paint; [done|]. unfold label_writes.
  destruct (add_u64 (RasterRect.x rect) 2); simpl; [|done..].
  destruct (add_u64 (RasterRect.y rect) 2); simpl; [|done..].
  by rewrite draw_text_paint.
Qed.

(** The whole window. *)
Lemma window_rects_ok r :
  rect_ok r → (RasterRect.width r =? 0) || (RasterRect.height r =? 0) = false → 10 ≤ RasterRect.height r →
  (∃ c, window_chrome_rect r = Return c ∧ rect_ok c) ∧
  (∀ o c, window_content_rect r = Return o → o = Some c → rect_ok c).
Proof.
  intros [Hx Hy] [Hw%N.eqb_neq Hh%N.eqb_neq]%orb_false_iff Hten. split.
  - unfold window_chrome_rect, RASTER_BORDER_THICKNESS, RASTER_CELL_HEIGHT, saturating_sub.
    unfold add_u64, checked_add. rewrite !(proj2 (N.leb_le _ _)) by lia. simpl.
    eexists. split; [done|]. split; simpl; lia.
  - intros o c Ho ->. unfold window_content_rect, RASTER_BORDER_THICKNESS, saturating_sub in Ho.
    apply bind_Return in Ho as (y0 & [-> _]%add_u64_Return & Ho).
    apply bind_Return in Ho as (y1 & [-> _]%add_u64_Return & Ho).
    apply bind_Return in Ho as (b & [-> Hb]%add_u64_Return & Ho).
    destruct (N.leb_spec (RasterRect.y r + RasterRect.height r)
      (RasterRect.y r + RASTER_CELL_HEIGHT + 1)); [done|].
    apply bind_Return in Ho as (x1 & [-> _]%add_u64_Return & Ho).
    unfold sub_u64, checked_sub in Ho. rewrite (proj2 (N.leb_le _ _)) in Ho by lia. simpl in Ho.
    injection Ho as <-. split; simpl; lia.
Qed.

Lemma pixel_rect_tall r : RasterRect.height (pixel_rect r) ≠ 0 → 10 ≤ RasterRect.height (pixel_rect r).
Proof.
  unfold pixel_rect, saturating_mul, RASTER_CELL_HEIGHT, u64_max. simpl.
  intros Hn. destruct (N.eq_0_gt_0_cases (SurfaceRect.height r)) as [E|]; [by rewrite E in Hn|lia].
Qed.

Definition window_ok (win : DesktopWindow.t) : Prop := rect_ok (pixel_rect (DesktopWindow.rect win)).
Definition damage_ok (d : option RasterRect.t) : Prop := match d with Some r => rect_ok r | None => True end.

Lemma raster_window_paint win d t :
  target_ok t → window_ok win → damage_ok d →
  raster_window win d t =
  ('(painted, ws) ← window_writes (target_width t) (target_height t) win d;
   t' ← paint ws t; Return (painted, t')).
Proof.
  intros Ht Hwin Hd. unfold raster_window, window_writes.
  set (rect := pixel_rect (DesktopWindow.rect win)) in *. fold rect in Hwin.
  destruct ((RasterRect.width rect =? 0) || (RasterRect.height rect =? 0)) eqn:E0; [done|].
  assert (10 ≤ RasterRect.height rect) as Hten.
  { apply pixel_rect_tall. apply orb_false_iff in E0 as [_ ?%N.eqb_neq]. done. }
  assert (∃ o, (match d with Some dr => RasterRect.intersect rect dr | None => Return (Some rect) end)
    = Return o ∧ (∀ c, o = Some c → rect_ok c)) as (o & -> & Ho).
  { destruct d as [dr|]; [|eexists; split; [done|]; naive_solver].
    destruct (intersect_opt rect dr) as (o & -> & Hok & _); [done..|]. exists o. split; [done|].
    intros c ->. by destruct Hok. }
  rewrite !return_bind. destruct o as [cl|]; [|done]. specialize (Ho cl eq_refl). clear d Hd.
  rewrite raster_frame_paint by done.
  destruct (clipped_part (Some cl) (frame_writes (target_width t) (target_height t) win rect))
    as [fw| |]; [|done..]. rewrite return_bind, paint_outcome_Return.
  destruct (paint_returns fw t Ht) as (t1 & E1 & Ht1 & W1 & G1). rewrite E1, return_bind.
  destruct (window_rects_ok rect Hwin E0 Hten) as [(ch & Hch & Hchok) Hcont].
  rewrite Hch, !return_bind.
  destruct (intersect_opt ch cl Hchok Ho) as (oc & -> & Hoc & _). rewrite !return_bind.
  assert ((match oc with
    | None => Return t1
    | Some chrome_rect =>
        ScissorTarget.within chrome_rect (λ s,
          x ← add_u64 (RasterRect.x rect) 2; y ← add_u64 (RasterRect.y rect) 2;
          draw_text_with_font x y (window_chrome_label win) DESKTOP_FONT TEXT_COLOR s) t1
    end) = paint_outcome (clipped_part oc (label_writes (target_width t) (target_height t) win rect)) t1)
    as ->.
  { destruct oc as [cr|]; [|done]. rewrite raster_label_paint by (done || apply Hoc). by rewrite W1, G1. }
  destruct (clipped_part oc (label_writes (target_width t) (target_height t) win rect))
    as [lw| |]; [|done..]. rewrite return_bind, paint_outcome_Return.
  destruct (paint_returns lw t1 Ht1) as (t2 & E2 & Ht2 & W2 & G2). rewrite E2, return_bind.
  destruct (window_content_rect rect) as [ct| |] eqn:Ect; [|done..]. rewrite !return_bind.
  specialize (Hcont ct). destruct ct as [cr|].
  2:{ rewrite !return_bind. simpl clipped_part. rewrite return_bind. cbn [mbind outcome_bind].
      rewrite paint_app, E1, return_bind, app_nil_r, E2. done. }
  destruct (intersect_opt cr cl) as (oc' & -> & Hoc' & _); [by apply Hcont|done|].
  rewrite !return_bind.
  assert ((match oc' with
    | None => Return t2
    | Some content_clip =>
        ScissorTarget.within content_clip (raster_content win rect (target_height t2)) t2
    end) = paint_outcome (clipped_part oc' (content_writes (target_width t) (target_height t) win rect)) t2)
    as ->.
  { destruct oc' as [cc|]; [|done]. rewrite raster_content_paint by (done || apply Hoc').
    by rewrite W2, G2, W1, G1. }
  destruct (clipped_part oc' _) as [cw| |]; [|done..]. rewrite !return_bind, paint_outcome_Return.
  rewrite !paint_app, E1, return_bind, paint_app, E2. done.
Qed.
End windows.

(** Under a damage rectangle a window makes the writes it makes without one, clipped. *)
Lemma window_writes_damage w h win d p ws :
  window_ok win → rect_ok d → window_writes w h win None = Return (p, ws) →
  ∃ p', window_writes w h win (Some d) = Return (p', clip d ws).
Proof.
  intros Hwin Hd. unfold window_writes. set (rect := pixel_rect (DesktopWindow.rect win)) in *.
  fold rect in Hwin. destruct (_ || _) eqn:E0; [intros [= <- <-]; by eexists|].
  assert (10 ≤ RasterRect.height rect) as Hten.
  { apply pixel_rect_tall. apply orb_false_iff in E0 as [_ ?%N.eqb_neq]. done. }
  rewrite return_bind. intros (fw & Ef & E)%bind_Return.
  destruct (window_rects_ok rect Hwin E0 Hten) as [(ch & Hch & Hchok) Hcont].
  rewrite Hch, return_bind in E.
  destruct (intersect_opt ch rect Hchok Hwin) as (oc & Hoc & _ & Hin). rewrite Hoc, return_bind in E.
  apply bind_Return in E as (lw & El & E). apply bind_Return in E as (ct & Ect & E).
  apply bind_Return in E as (occ & Eocc & E). apply bind_Return in E as (cw & Ec & [= <- <-]).
  destruct (intersect_opt rect d Hwin Hd) as (o & -> & Ho & Hino). rewrite return_bind.
  destruct o as [cl|]; simpl in Hino.
  2:{ exists false. do 2 f_equal. symmetry. apply elem_of_nil_inv. intros wr.
      unfold clip. rewrite list_elem_of_filter, !elem_of_app. intros [Hdw Hw].
      assert (inside rect (wx wr) (wy wr) = true) as Hrw; [|specialize (Hino (wx wr) (wy wr)); by rewrite Hdw, Hrw in Hino].
      assert (∀ o m v, clipped_part o m = Return v →
        (∀ x y, inside_opt o x y = true → inside rect x y = true) → wr ∈ v →
        inside rect (wx wr) (wy wr) = true) as Hpart.
      { intros o m v Hv Hsub Hin'. destruct o as [r|]; simpl in Hv.
        - apply bind_Return in Hv as (v0 & _ & [= <-]). unfold clip in Hin'.
          apply list_elem_of_filter in Hin' as [Hin' _]. by apply Hsub.
        - injection Hv as <-. by apply elem_of_nil in Hin'. }
      destruct Hw as [Hw|[Hw|Hw]].
      - by apply (Hpart _ _ _ Ef).
      - apply (Hpart _ _ _ El); [|done]. intros x y. rewrite Hin. by intros [_ ?]%andb_true_iff.
      - apply (Hpart _ _ _ Ec); [|done]. intros x y. destruct ct as [cr|]; [|by injection Eocc as <-].
        destruct (intersect_opt cr rect) as (o & Eo & _ & Hio); [by eapply Hcont|done|].
        rewrite Eo in Eocc. injection Eocc as <-. rewrite Hio. by intros [_ ?]%andb_true_iff. }
  destruct Ho as (Hclok & Hw0 & Hh0).
  rewrite (clipped_part_damage (Some rect) (Some cl) d _ fw) by done. rewrite return_bind, Hch, return_bind.
  destruct (intersect_opt ch cl Hchok Hclok) as (oc' & -> & Hoc' & Hin'). rewrite return_bind.
  rewrite (clipped_part_damage oc oc' d _ lw); [|done| |done].
  2:{ intros x y. rewrite Hin', Hin. simpl in Hino. rewrite Hino. by rewrite andb_assoc. }
  rewrite return_bind, Ect, return_bind.
  assert (∃ oc2, (match ct with None => Return None | Some cr => RasterRect.intersect cr cl end) = Return oc2 ∧
    opt_ok oc2 ∧ ∀ x y, inside_opt oc2 x y = inside_opt occ x y && inside d x y) as (oc2 & -> & Hoc2 & Hin2).
  { destruct ct as [cr|].
    - assert (rect_ok cr) as Hcr by (by eapply Hcont).
      destruct (intersect_opt cr rect Hcr Hwin) as (o & Eo & _ & Hio). rewrite Eo in Eocc.
      injection Eocc as <-. destruct (intersect_opt cr cl Hcr Hclok) as (o2 & -> & Hok2 & Hio2).
      exists o2. split_and!; [done..|]. intros x y. rewrite Hio2, Hio, Hino. by rewrite andb_assoc.
    - injection Eocc as <-. by exists None. }
  rewrite return_bind. rewrite (clipped_part_damage occ oc2 d _ cw); [|done..].
  rewrite return_bind. exists true. by rewrite !clip_app.
Qed.

(** All windows, in the order they are drawn. *)
Fixpoint windows_writes (w h : N) (d : option RasterRect.t) (wins : list DesktopWindow.t)
    : outcome (N * list write) :=
  match wins with
  | [] => Return (0, [])
  | win :: wins =>
      '(p, ws) ← window_writes w h win d;
      '(k, ws') ← windows_writes w h d wins;
      Return ((if (p : bool) then 1 else 0) + k, ws ++ ws')
  end.

Lemma raster_windows_paint `{PaintSpec T} d wins n (t : T) :
  target_ok t → Forall window_ok wins → damage_ok d →
  Compositor.raster_windows d wins (n, t) =
  ('(k, ws) ← windows_writes (target_width t) (target_height t) d wins;
   t' ← paint ws t; Return (n + k, t')).
Proof.
  intros Ht Hwins Hd. revert n t Ht.
  induction Hwins as [|win wins Hwin _ IH]; intros n t Ht.
  { simpl. by rewrite N.add_0_r. }
  unfold Compositor.raster_windows in *. cbn [fold_outcome windows_writes].
  rewrite raster_window_paint by done.
  destruct (window_writes _ _ win d) as [[p ws]| |]; [|done..]. rewrite !return_bind.
  destruct (paint_returns ws t Ht) as (t1 & E1 & Ht1 & W1 & G1). rewrite E1, !return_bind, IH by done.
  rewrite W1, G1. destruct (windows_writes _ _ d wins) as [[k ws']| |]; [|done..]. rewrite !return_bind.
  rewrite paint_app, E1, return_bind. destruct (paint ws' t1); [|done..]. rewrite !return_bind.
  do 2 f_equal. destruct p; lia.
Qed.

Lemma windows_writes_damage w h d wins k ws :
  Forall window_ok wins → rect_ok d → windows_writes w h None wins = Return (k, ws) →
  ∃ k', windows_writes w h (Some d) wins = Return (k', clip d ws).
Proof.
  intros Hwins Hd. revert k ws. induction Hwins as [|win wins Hwin _ IH]; intros k ws; simpl.
  { intros [= <- <-]. by eexists. }
  intros ([p ws1] & E1 & ([k2 ws2] & E2 & [= <- <-])%bind_Return)%bind_Return.
  destruct (window_writes_damage _ _ _ _ _ _ Hwin Hd E1) as [p' ->].
  destruct (IH _ _ E2) as [k' ->]. simpl. eexists. by rewrite clip_app.
Qed.

(** A fill of a rectangle writes exactly the points of it that the target has. *)
Lemma last_color_fill w h r c x y :
  rect_ok r →
  last_color x y (fill_writes w h r c)
  = if inside r x y && (x <? w) && (y <? h) then Some c else None.
Proof.
  intros [Hx Hy]. unfold fill_writes. destruct (_ || _) eqn:E0.
  - replace (inside r x y) with false; [done|]. symmetry. apply not_true_iff_false. rewrite inside_iff.
    apply orb_true_iff in E0 as [E|E]; apply N.eqb_eq in E; lia.
  - rewrite last_color_block. unfold saturating_add, u64_max in *.
    replace (_ && _) with (inside r x y && (x <? w) && (y <? h)); [done|].
    apply eq_true_iff_eq. rewrite !andb_true_iff, inside_iff, !N.leb_le, !N.ltb_lt. lia.
Qed.

(** C21: redrawing only a damaged rectangle is exact.  For any pixel store, any windows and
    any rectangle that meets the screen: if redrawing the whole desktop works, then so does
    redrawing with the rectangle as damage, and afterwards every pixel inside the rectangle
    shows what the full redraw shows there, while every pixel outside it is as it was. *)
Theorem damaged_redraw_is_exact `{PictureSpec T} windows rect (t : T) stats tf :
  target_ok t → u64_ok (target_width t) → u64_ok (target_height t) → rect_ok rect →
  Forall window_ok windows →
  (∃ x y, inside rect x y = true ∧ x < target_width t ∧ y < target_height t) →
  Compositor.render_desktop_to_target windows t = Return (stats, tf) →
  ∃ stats' td,
    Compositor.render_desktop_to_target_with_damage windows (Some rect) t = Return (stats', td) ∧
    ∀ x y, pixel x y td = if inside rect x y then pixel x y tf else pixel x y t.
Proof.
  intros Ht Hw Hh Hr Hwins (px & py & Hin & Hpx & Hpy).
  unfold Compositor.render_desktop_to_target, Compositor.render_desktop_to_target_with_damage.
  set (w := target_width t) in *. set (h := target_height t) in *.
  set (sorted := stable_sort DesktopWindow.key_leb windows).
  assert (Forall window_ok sorted) as Hs by (unfold sorted; by rewrite stable_sort_Permutation).
  assert (rect_ok (RasterRect.new 0 0 w h)) as Hb by (split; simpl; unfold u64_ok in *; lia).
  destruct (intersect_opt rect _ Hr Hb) as (o & -> & Ho & Hio). rewrite !return_bind.
  destruct o as [d|].
  2:{ exfalso. specialize (Hio px py). simpl in Hio. rewrite Hin in Hio. simpl in Hio.
      symmetry in Hio. apply not_true_iff_false in Hio. apply Hio, inside_iff. simpl. lia. }
  destruct Ho as (Hdok & _).
  rewrite clear_paint. fold w h. set (cws := block_writes 0 h 0 w DESKTOP_BACKGROUND_COLOR).
  destruct (paint_returns cws t Ht) as (t1 & E1 & Ht1 & W1 & G1). rewrite E1, return_bind.
  rewrite raster_windows_paint by done. rewrite W1, G1. fold w h.
  intros ([k tk] & Ek & [= <- ->])%bind_Return.
  apply bind_Return in Ek as ([k' ws] & Ews & Ek). apply bind_Return in Ek as (t2 & E2 & [= <- ->]).
  rewrite fill_rect_paint. fold w h. set (dws := fill_writes w h d DESKTOP_BACKGROUND_COLOR).
  destruct (paint_returns dws t Ht) as (t3 & E3 & Ht3 & W3 & G3). rewrite E3, return_bind.
  rewrite raster_windows_paint by done. rewrite W3, G3. fold w h.
  destruct (windows_writes_damage w h d sorted k' ws Hs Hdok Ews) as [k2 ->]. rewrite return_bind.
  destruct (paint_returns (clip d ws) t3 Ht3) as (t4 & E4 & Ht4 & W4 & G4). rewrite E4, !return_bind.
  do 2 eexists. split; [done|]. intros x y.
  assert (paint (cws ++ ws) t = Return tf) as Ef by (by rewrite paint_app, E1).
  assert (paint (dws ++ clip d ws) t = Return t4) as Ed by (by rewrite paint_app, E3).
  destruct (paint_returns ws t1 Ht1) as (tf' & Etf & Htf & _). rewrite E2 in Etf. injection Etf as <-.
  destruct (paint_picture _ _ _ Ht Ef) as [_ Hf]. destruct (paint_picture _ _ _ Ht Ed) as [_ Hd].
  rewrite !pixel_picture by done. rewrite Hf, Hd.
  pose proof (picture_bounds t x y Ht) as Hbd. fold w h in Hbd.
  rewrite !last_color_app, last_color_clip. unfold dws, cws. rewrite last_color_fill by done.
  rewrite last_color_block.
  case_bool_decide as Hs'.
  2:{ destruct (inside rect x y); [done|]. do 2 f_equal. symmetry. by apply eq_None_not_Some. }
  apply Hbd in Hs' as [Hx Hy].
  assert (inside d x y = inside rect x y) as Hdr.
  { specialize (Hio x y). simpl in Hio. rewrite Hio.
    replace (inside (RasterRect.new 0 0 w h) x y) with true; [by rewrite andb_true_r|].
    symmetry. apply inside_iff. simpl. lia. }
  rewrite Hdr, (proj2 (N.ltb_lt x w) Hx), (proj2 (N.ltb_lt y h) Hy). simpl.
  destruct (inside rect x y); simpl; [|done].
  replace ((0 <=? y) && true) with true by (by rewrite (proj2 (N.leb_le 0 y)) by lia).
  rewrite (proj2 (N.leb_le 0 x)) by lia. done.
Qed.
End DamageSpec.

(** ** The character canvas *)
Module CanvasSpec.

Definition shape (w h : N) (c : canvas) : Prop := len c = h ∧ Forall (λ row, len row = w) c.
Definition cell (c : canvas) (x y : N) : option N := c !! N.to_nat y ≫= λ row, row !! N.to_nat x.

(** A character put at a cell. *)
Record put := Put { cx : N; cy : N; cch : N }.
Definition put_all (ws : list put) (c : canvas) : canvas :=
  foldl (λ c p, put_char (cx p) (cy p) (cch p) c) c ws.
Definition at_cell (x y : N) (p : put) : bool := (cx p =? x) && (cy p =? y).
Definition last_char (x y : N) (ws : list put) : option N := cch <$> rfind (at_cell x y) ws.

Lemma put_char_spec w h c x y ch :
  shape w h c →
  shape w h (put_char x y ch c) ∧
  ∀ x' y', cell (put_char x y ch c) x' y' =
    if (x =? x') && (y =? y') && (x <? w) && (y <? h) then Some ch else cell c x' y'.
Proof.
  intros [Hh Hw]. unfold put_char.
  destruct (c !! N.to_nat y) as [row|] eqn:Er.
  2:{ split; [done|]. intros x' y'. apply lookup_ge_None in Er. unfold len in Hh.
      rewrite (proj2 (N.ltb_ge y h)) by lia. by rewrite andb_false_r. }
  pose proof (Forall_lookup_1 _ _ _ _ Hw Er) as Hrow. simpl in Hrow. unfold len in *.
  pose proof (lookup_lt_Some _ _ _ Er) as Hy.
  destruct (row !! N.to_nat x) as [old|] eqn:Ex.
  2:{ split; [done|]. intros x' y'. apply lookup_ge_None in Ex.
      rewrite (proj2 (N.ltb_ge x w)) by lia. by rewrite andb_false_r. }
  pose proof (lookup_lt_Some _ _ _ Ex) as Hx. split.
  - split; [unfold len; by rewrite length_insert|]. apply Forall_insert; [done|].
    unfold len. by rewrite length_insert.
  - intros x' y'. rewrite (proj2 (N.ltb_lt x w)), (proj2 (N.ltb_lt y h)), !andb_true_r by lia.
    unfold cell. destruct (N.eqb_spec y y') as [<-|Hne].
    + rewrite list_lookup_insert_eq by done. simpl. rewrite andb_true_r.
      destruct (N.eqb_spec x x') as [<-|Hnx]; [by rewrite list_lookup_insert_eq|].
      rewrite list_lookup_insert_ne by lia. by rewrite Er.
    + rewrite andb_false_r. by rewrite list_lookup_insert_ne by lia.
Qed.

Lemma put_all_spec w h ws c :
  shape w h c →
  shape w h (put_all ws c) ∧
  ∀ x y, x < w → y < h → cell (put_all ws c) x y =
    match last_char x y ws with Some ch => Some ch | None => cell c x y end.
Proof.
  intros Hc. induction ws as [|p ws [IHs IHc]] using rev_ind; [done|].
  unfold put_all in *. rewrite foldl_app. simpl.
  destruct (put_char_spec w h _ (cx p) (cy p) (cch p) IHs) as [Hs Hp]. split; [done|].
  intros x y Hx Hy. rewrite Hp. unfold last_char. rewrite rfind_snoc. unfold at_cell at 1.
  destruct (N.eqb_spec (cx p) x) as [->|]; [destruct (N.eqb_spec (cy p) y) as [->|]|]; simpl.
  - by rewrite (proj2 (N.ltb_lt x w) Hx), (proj2 (N.ltb_lt y h) Hy).
  - by apply IHc.
  - by apply IHc.
Qed.

(** The puts of a loop, one iteration after the other. *)
Fixpoint gather {A} (g : A → outcome (list put)) (l : list A) : outcome (list put) :=
  match l with
  | [] => Return []
  | a :: l => ws ← g a; ws' ← gather g l; Return (ws ++ ws')
  end.

(** A drawing step that puts the characters of [m]. *)
Definition puts (w h : N) (m : outcome (list put)) (f : canvas → outcome canvas) : Prop :=
  ∀ c, shape w h c → f c = ws ← m; Return (put_all ws c).

Lemma puts_skip w h : puts w h (Return []) Return.
Proof. by intros c _. Qed.

Lemma puts_bind w h m m' f f' :
  puts w h m f → puts w h m' f' →
  puts w h (ws ← m; ws' ← m'; Return (ws ++ ws')) (λ c, f c ≫= f').
Proof.
  intros Hf Hf' c Hc. rewrite Hf by done. destruct m as [ws| |]; simpl; [|done..].
  rewrite Hf' by (by apply put_all_spec). destruct m' as [ws'| |]; simpl; [|done..].
  unfold put_all. by rewrite foldl_app.
Qed.

Lemma puts_compute {A} w h (k : outcome A) m f :
  (∀ a, k = Return a → puts w h (m a) (f a)) → puts w h (k ≫= m) (λ c, a ← k; f a c).
Proof. intros Hk c Hc. destruct k as [a| |]; simpl; [by apply Hk|done..]. Qed.

Lemma puts_loop {A} w h (g : A → outcome (list put)) (F : canvas → A → outcome canvas) l :
  (∀ a, a ∈ l → puts w h (g a) (λ c, F c a)) → puts w h (gather g l) (fold_outcome F l).
Proof.
  induction l as [|a l IH]; intros Hl; [apply puts_skip|].
  apply (puts_bind w h (g a) (gather g l) (λ c, F c a) (fold_outcome F l)).
  - apply Hl. by left.
  - apply IH. intros b Hb. apply Hl. by right.
Qed.

Lemma puts_char w h x y ch : puts w h (Return [Put x y ch]) (λ c, Return (put_char x y ch c)).
Proof. by intros c _. Qed.

(** The puts of the parts of a window. *)
Definition frame_puts (w h border : N) (r : SurfaceRect.t) : outcome (list put) :=
  gather (λ dy,
    y ← add_u64 (SurfaceRect.y r) dy;
    if h <=? y then Return [] else
    gather (λ dx,
      x ← add_u64 (SurfaceRect.x r) dx;
      if w <=? x then Return [] else
      let edge := (dy =? 0) || (dy + 1 =? SurfaceRect.height r)
                  || (dx =? 0) || (dx + 1 =? SurfaceRect.width r) in
      Return [Put x y (if edge then border else 32)]) (range 0 (SurfaceRect.width r)))
    (range 0 (SurfaceRect.height r)).

Fixpoint text_puts (x y i : N) (text : Str.t) : outcome (list put) :=
  match text with
  | [] => Return []
  | ch :: text =>
      x1 ← add_u64 x 1; px ← add_u64 x1 i;
      ws ← text_puts x y (i + 1) text; Return (Put px y ch :: ws)
  end.

Fixpoint lines_puts (h : N) (r : SurfaceRect.t) (inner_width i : N) (lines : list Str.t)
    : outcome (list put) :=
  match lines with
  | [] => Return []
  | line :: lines =>
      y1 ← add_u64 (SurfaceRect.y r) 1; y ← add_u64 y1 i;
      if h <=? y then Return [] else
      ws ← text_puts (SurfaceRect.x r) y 0 (take (N.to_nat inner_width) line);
      ws' ← lines_puts h r inner_width (i + 1) lines;
      Return (ws ++ ws')
  end.

Definition cursor_puts (r : SurfaceRect.t) (inner_width inner_height : N)
    (cursor : option CursorPosition.t) : outcome (list put) :=
  match cursor with
  | Some cur =>
      if (CursorPosition.line cur <? inner_height) && (CursorPosition.column cur <? inner_width) then
        x1 ← add_u64 (SurfaceRect.x r) 1; x ← add_u64 x1 (CursorPosition.column cur);
        y1 ← add_u64 (SurfaceRect.y r) 1; y ← add_u64 y1 (CursorPosition.line cur);
        Return [Put x y CURSOR_GLYPH]
      else Return []
  | None => Return []
  end.

Definition window_puts (w h : N) (win : DesktopWindow.t) : outcome (list put) :=
  let r := DesktopWindow.rect win in
  if (SurfaceRect.width r =? 0) || (SurfaceRect.height r =? 0) || (h =? 0) || (w =? 0)
  then Return [] else
  let border := if DesktopWindow.is_focused win then 35 else 43 in
  ws1 ← frame_puts w h border r;
  ws2 ← (ws2 ← (if 2 <? SurfaceRect.width r then
           text_puts (SurfaceRect.x r) (SurfaceRect.y r) 0
             (take (N.to_nat (SurfaceRect.width r - 2)) (window_chrome_label win))
         else Return []);
  let inner_width := saturating_sub (SurfaceRect.width r) 2 in
  let inner_height := saturating_sub (SurfaceRect.height r) 2 in
  ws3 ← (if (inner_width =? 0) || (inner_height =? 0) then Return [] else
    let lines := take (N.to_nat inner_height)
                   (render_content_lines (ViewFrame.content (DesktopWindow.frame win))) in
    ws ← lines_puts h r inner_width 0 lines;
    ws' ← cursor_puts r inner_width inner_height (ViewFrame.cursor (DesktopWindow.frame win));
    Return (ws ++ ws'));
  Return (ws2 ++ ws3));
  Return (ws1 ++ ws2).

Lemma frame_puts_spec w h border r : puts w h (frame_puts w h border r) (draw_frame border r).
Proof.
  apply puts_loop. intros dy _. apply puts_compute. intros y _ c Hc.
  pose proof Hc as [Hh _]. rewrite Hh. destruct (N.leb_spec h y) as [|Hy]; [done|].
  refine (puts_loop w h _ _ _ _ c Hc). clear c Hc Hh. intros dx _. apply puts_compute.
  intros x _ c Hc. pose proof Hc as [Hh Hw].
  destruct (lookup_lt_is_Some_2 c (N.to_nat y)) as [row Er]; [unfold len in Hh; lia|].
  rewrite Er. simpl. pose proof (Forall_lookup_1 _ _ _ _ Hw Er) as Hrow. simpl in Hrow. rewrite Hrow.
  destruct (N.leb_spec w x) as [|Hx]; [done|]. simpl. unfold put_all. simpl. unfold put_char. rewrite Er.
  destruct (lookup_lt_is_Some_2 row (N.to_nat x)) as [old Ex]; [unfold len in Hrow; lia|]. by rewrite Ex.
Qed.

Lemma text_puts_spec w h x y i text : puts w h (text_puts x y i text) (put_text x y i text).
Proof.
  revert i. induction text as [|ch text IH]; intros i; [apply puts_skip|]. simpl.
  apply (puts_compute w h (add_u64 x 1)). intros x1 _. apply (puts_compute w h (add_u64 x1 i)).
  intros px _ c Hc. rewrite IH by (by apply put_char_spec). by destruct (text_puts x y (i + 1) text).
Qed.

Lemma lines_puts_spec w h r iw i lines : puts w h (lines_puts h r iw i lines) (draw_lines r iw i lines).
Proof.
  revert i. induction lines as [|line lines IH]; intros i; [apply puts_skip|]. simpl.
  apply (puts_compute w h (add_u64 (SurfaceRect.y r) 1)). intros y1 _.
  apply (puts_compute w h (add_u64 y1 i)). intros y _ c Hc.
  pose proof Hc as [Hh _]. rewrite Hh. destruct (h <=? y); [done|].
  apply (puts_bind w h _ _ _ (draw_lines r iw (i + 1) lines)); [apply text_puts_spec|apply IH|done].
Qed.

Lemma cursor_puts_spec w h r iw ih cursor :
  puts w h (cursor_puts r iw ih cursor) (draw_cursor r iw ih cursor).
Proof.
  destruct cursor as [cur|]; [|apply puts_skip]. unfold cursor_puts, draw_cursor.
  destruct (_ && _); [|apply puts_skip]. do 4 (apply puts_compute; intros ? _). apply puts_char.
Qed.

Lemma window_puts_spec w h win : puts w h (window_puts w h win) (λ c, draw_window c win).
Proof.
  intros c Hc. unfold draw_window, window_puts. set (r := DesktopWindow.rect win).
  assert ((match c with [] | [] :: _ => true | _ => false end) = (h =? 0) || (w =? 0)) as ->.
  { destruct Hc as [<- Hw]. destruct c as [|row c]; [done|]. apply Forall_cons in Hw as [<- _].
    unfold len. destruct row as [|x row]; cbn [length];
      repeat match goal with |- context [?a =? ?b] => destruct (N.eqb_spec a b) end; (done || lia). }
  rewrite orb_assoc. destruct (_ || _ || _ || _); [done|].
  refine (puts_bind w h _ _ _ (λ c, _) _ _ c Hc); [apply frame_puts_spec|].
  refine (puts_bind w h _ _ (λ c, _) (λ c, _) _ _).
  - destruct (2 <? SurfaceRect.width r); [apply text_puts_spec|apply puts_skip].
  - destruct (_ || _); [apply puts_skip|].
    refine (puts_bind w h _ _ (λ c, _) (λ c, _) _ _); [apply lines_puts_spec|apply cursor_puts_spec].
Qed.

(** *** Which cells a window writes *)
Definition covers (win : DesktopWindow.t) (x y : N) : bool :=
  let r := DesktopWindow.rect win in
  (SurfaceRect.x r <=? x) && (x <? SurfaceRect.x r + SurfaceRect.width r)
  && (SurfaceRect.y r <=? y) && (y <? SurfaceRect.y r + SurfaceRect.height r).

Lemma covers_iff win x y :
  covers win x y = true ↔
  SurfaceRect.x (DesktopWindow.rect win) ≤ x < SurfaceRect.x (DesktopWindow.rect win) + SurfaceRect.width (DesktopWindow.rect win)
  ∧ SurfaceRect.y (DesktopWindow.rect win) ≤ y < SurfaceRect.y (DesktopWindow.rect win) + SurfaceRect.height (DesktopWindow.rect win).
Proof. unfold covers. rewrite !andb_true_iff, !N.leb_le, !N.ltb_lt. tauto. Qed.

Lemma gather_elem {A} (g : A → outcome (list put)) l ws p :
  gather g l = Return ws → p ∈ ws → ∃ a wa, a ∈ l ∧ g a = Return wa ∧ p ∈ wa.
Proof.
  revert ws. induction l as [|a l IH]; intros ws; simpl.
  - intros [= <-] Hp. by apply elem_of_nil in Hp.
  - intros (wa & Ea & (wl & El & [= <-])%bind_Return)%bind_Return [Hp|Hp]%elem_of_app.
    + exists a, wa. split_and!; [by left|done..].
    + destruct (IH wl El Hp) as (b & wb & Hb & ?). exists b, wb. split; [by right|done].
Qed.

Lemma gather_mem {A} (g : A → outcome (list put)) l ws a :
  gather g l = Return ws → a ∈ l → ∃ wa, g a = Return wa ∧ ∀ p, p ∈ wa → p ∈ ws.
Proof.
  revert ws. induction l as [|b l IH]; intros ws; simpl.
  - intros _ Ha. by apply elem_of_nil in Ha.
  - intros (wb & Eb & (wl & El & [= <-])%bind_Return)%bind_Return [->|Ha]%elem_of_cons.
    + exists wb. split; [done|]. intros p Hp. apply elem_of_app. by left.
    + destruct (IH wl El Ha) as (wa & ? & Hin). exists wa. split; [done|].
      intros p Hp. apply elem_of_app. right. by apply Hin.
Qed.

Lemma text_puts_elem x y i text ws p :
  text_puts x y i text = Return ws → p ∈ ws →
  cy p = y ∧ x + 1 + i ≤ cx p < x + 1 + i + len text.
Proof.
  revert i ws. induction text as [|ch text IH]; intros i ws; simpl.
  - intros [= <-] Hp. by apply elem_of_nil in Hp.
  - intros (x1 & [-> _]%add_u64_Return & (px & [-> _]%add_u64_Return & (wt & Et & [= <-])%bind_Return)%bind_Return)%bind_Return.
    unfold len in *. simpl. intros [->|Hp]%elem_of_cons; simpl; [lia|].
    destruct (IH _ _ Et Hp). lia.
Qed.

Lemma lines_puts_elem h r iw i lines ws p :
  lines_puts h r iw i lines = Return ws → p ∈ ws →
  SurfaceRect.x r + 1 ≤ cx p < SurfaceRect.x r + 1 + iw ∧
  SurfaceRect.y r + 1 + i ≤ cy p < SurfaceRect.y r + 1 + i + len lines.
Proof.
  revert i ws. induction lines as [|line lines IH]; intros i ws; simpl.
  - intros [= <-] Hp. by apply elem_of_nil in Hp.
  - intros (y1 & [-> _]%add_u64_Return & (y & [-> _]%add_u64_Return & E)%bind_Return)%bind_Return.
    unfold len in *. simpl. destruct (h <=? _); [injection E as <-; intros Hp; by apply elem_of_nil in Hp|].
    apply bind_Return in E as (wt & Et & (wl & El & [= <-])%bind_Return).
    intros [Hp|Hp]%elem_of_app.
    + destruct (text_puts_elem _ _ _ _ _ _ Et Hp) as [-> Hx]. unfold len in Hx.
      rewrite length_take in Hx. lia.
    + destruct (IH _ _ El Hp). lia.
Qed.

(** A window writes only cells that it covers. *)
Lemma window_puts_inside w h win ws p :
  window_puts w h win = Return ws → p ∈ ws → covers win (cx p) (cy p) = true.
Proof.
  unfold window_puts. rewrite covers_iff. set (r := DesktopWindow.rect win).
  destruct (_ || _ || _ || _) eqn:E0; [intros [= <-] Hp; by apply elem_of_nil in Hp|].
  rewrite !orb_false_iff, !N.eqb_neq in E0.
  intros (ws1 & E1 & (ws23 & E23 & [= <-])%bind_Return)%bind_Return.
  apply bind_Return in E23 as (ws2 & E2 & (ws3 & E3 & [= <-])%bind_Return).
  intros [Hp|[Hp|Hp]%elem_of_app]%elem_of_app.
  - destruct (gather_elem _ _ _ _ E1 Hp) as (dy & wy & Hdy & Ey & Hpy). apply elem_of_span in Hdy.
    apply bind_Return in Ey as (y & [-> _]%add_u64_Return & Ey).
    destruct (h <=? _); [injection Ey as <-; by apply elem_of_nil in Hpy|].
    destruct (gather_elem _ _ _ _ Ey Hpy) as (dx & wx & Hdx & Ex & Hpx). apply elem_of_span in Hdx.
    apply bind_Return in Ex as (x & [-> _]%add_u64_Return & Ex).
    destruct (w <=? _); injection Ex as <-; [by apply elem_of_nil in Hpx|].
    apply list_elem_of_singleton in Hpx as ->. simpl. lia.
  - destruct (N.ltb_spec 2 (SurfaceRect.width r)); [|injection E2 as <-; by apply elem_of_nil in Hp].
    destruct (text_puts_elem _ _ _ _ _ _ E2 Hp) as [-> Hx]. unfold len in Hx. rewrite length_take in Hx. lia.
  - unfold saturating_sub in E3.
    destruct ((SurfaceRect.width r - 2 =? 0) || (SurfaceRect.height r - 2 =? 0)) eqn:Ei.
    { injection E3 as <-. by apply elem_of_nil in Hp. }
    apply orb_false_iff in Ei as [Ew%N.eqb_neq Eh%N.eqb_neq].
    apply bind_Return in E3 as (wl & El & (wc & Ec & [= <-])%bind_Return).
    apply elem_of_app in Hp as [Hp|Hp].
    + destruct (lines_puts_elem _ _ _ _ _ _ _ El Hp) as [? Hy]. unfold len in Hy.
      rewrite length_take in Hy. lia.
    + unfold cursor_puts in Ec. destruct (ViewFrame.cursor _) as [cur|];
        [|injection Ec as <-; by apply elem_of_nil in Hp].
      destruct (_ && _) eqn:Eb; [|injection Ec as <-; by apply elem_of_nil in Hp].
      apply andb_true_iff in Eb as [Hl%N.ltb_lt Hc%N.ltb_lt].
      apply bind_Return in Ec as (x1 & [-> _]%add_u64_Return & Ec).
      apply bind_Return in Ec as (x & [-> _]%add_u64_Return & Ec).
      apply bind_Return in Ec as (y1 & [-> _]%add_u64_Return & Ec).
      apply bind_Return in Ec as (y & [-> _]%add_u64_Return & [= <-]).
      apply list_elem_of_singleton in Hp as ->. simpl. lia.
Qed.

(** A window writes every cell of the canvas that it covers. *)
Lemma window_puts_covers w h win ws x y :
  window_puts w h win = Return ws → covers win x y = true → x < w → y < h →
  ∃ p, p ∈ ws ∧ at_cell x y p = true.
Proof.
  unfold window_puts. rewrite covers_iff. set (r := DesktopWindow.rect win). intros E [Hx Hy] Hw Hh.
  destruct (_ || _ || _ || _) eqn:E0.
  { rewrite !orb_true_iff, !N.eqb_eq in E0. lia. }
  apply bind_Return in E as (ws1 & E1 & (ws23 & _ & [= <-])%bind_Return).
  destruct (gather_mem _ _ _ (y - SurfaceRect.y r) E1) as (wy & Ey & Hiny); [apply elem_of_span; lia|].
  apply bind_Return in Ey as (y' & [-> _]%add_u64_Return & Ey).
  destruct (N.leb_spec h (SurfaceRect.y r + (y - SurfaceRect.y r))); [lia|].
  destruct (gather_mem _ _ _ (x - SurfaceRect.x r) Ey) as (wx & Ex & Hinx); [apply elem_of_span; lia|].
  apply bind_Return in Ex as (x' & [-> _]%add_u64_Return & Ex).
  destruct (N.leb_spec w (SurfaceRect.x r + (x - SurfaceRect.x r))); [lia|].
  injection Ex as <-. eexists. split.
  - apply elem_of_app. left. apply Hiny, Hinx, list_elem_of_singleton. done.
  - unfold at_cell. simpl. apply andb_true_iff. rewrite !N.eqb_eq. lia.
Qed.

Lemma last_char_None x y ws : (∀ p, p ∈ ws → at_cell x y p = false) → last_char x y ws = None.
Proof.
  intros Hn. unfold last_char, rfind. destruct (filter _ _) as [|p l] eqn:E; [done|]. exfalso.
  assert (at_cell x y p = true ∧ p ∈ ws) as [Ha Hp].
  { rewrite <- elem_of_reverse. apply (list_elem_of_filter (λ w, at_cell x y w = true)). rewrite E. by left. }
  by rewrite Hn in Ha.
Qed.

Lemma last_char_Some x y ws p : p ∈ ws → at_cell x y p = true → is_Some (last_char x y ws).
Proof.
  intros Hp Ha. unfold last_char, rfind. apply fmap_is_Some.
  assert (p ∈ filter (λ w, at_cell x y w = true) (reverse ws)) as Hf
    by (by rewrite list_elem_of_filter, elem_of_reverse).
  destruct (filter _ _); [by apply elem_of_nil in Hf|done].
Qed.

Lemma last_char_app x y ws ws' :
  last_char x y (ws ++ ws') =
  match last_char x y ws' with Some c => Some c | None => last_char x y ws end.
Proof.
  induction ws' as [|p ws' IH] using rev_ind; [by rewrite app_nil_r|].
  rewrite app_assoc. unfold last_char in *. rewrite !rfind_snoc. by destruct (at_cell x y p).
Qed.

Lemma gather_app {A} (g : A → outcome (list put)) l l' ws :
  gather g (l ++ l') = Return ws → ∃ w1 w2, gather g l = Return w1 ∧ gather g l' = Return w2 ∧ ws = w1 ++ w2.
Proof.
  revert ws. induction l as [|a l IH]; intros ws; simpl; [intros E; by exists [], ws|].
  intros (wa & -> & (wl & El & [= <-])%bind_Return)%bind_Return.
  destruct (IH wl El) as (w1 & w2 & -> & -> & ->). simpl. exists (wa ++ w1), w2. by rewrite app_assoc.
Qed.

(** The rows of a composed surface as a canvas, and a blank one. *)
Definition blank (size : SurfaceSize.t) : canvas :=
  replicate (N.to_nat (SurfaceSize.height size))
    (replicate (N.to_nat (SurfaceSize.width size)) DESKTOP_BACKGROUND).

Lemma blank_shape size : shape (SurfaceSize.width size) (SurfaceSize.height size) (blank size).
Proof.
  unfold blank, shape, len. rewrite length_replicate. split; [lia|].
  apply Forall_replicate. rewrite length_replicate. lia.
Qed.

Lemma blank_cell size x y :
  x < SurfaceSize.width size → y < SurfaceSize.height size →
  cell (blank size) x y = Some DESKTOP_BACKGROUND.
Proof.
  intros Hx Hy. unfold cell, blank. rewrite lookup_replicate_2 by lia. simpl.
  by rewrite lookup_replicate_2 by lia.
Qed.

Lemma compose_desktop_puts size wins f :
  Compositor.compose_desktop size wins = Return f →
  ∃ ws, gather (window_puts (SurfaceSize.width size) (SurfaceSize.height size))
          (stable_sort DesktopWindow.key_leb wins) = Return ws ∧
    SurfaceFrame.rows f = put_all ws (blank size).
Proof.
  unfold Compositor.compose_desktop. fold (blank size). intros (c & Ec & [= <-])%bind_Return.
  rewrite (puts_loop (SurfaceSize.width size) (SurfaceSize.height size)
    (window_puts (SurfaceSize.width size) (SurfaceSize.height size)) draw_window) in Ec;
    [|intros; apply window_puts_spec|apply blank_shape].
  apply bind_Return in Ec as (ws & Ews & [= <-]). by exists ws.
Qed.

(** The composed desktop has the size that was asked for, and each cell is decided by
    the topmost window that covers it: a cell that no window covers shows the background,
    and otherwise it shows what that window shows there when it is drawn alone.  The
    topmost window is the last one in the order of layer, z-index and view. *)
Theorem topmost_window_wins size wins f :
  Compositor.compose_desktop size wins = Return f →
  shape (SurfaceSize.width size) (SurfaceSize.height size) (SurfaceFrame.rows f) ∧
  ∀ x y, x < SurfaceSize.width size → y < SurfaceSize.height size →
    (Forall (λ w, covers w x y = false) wins →
       cell (SurfaceFrame.rows f) x y = Some DESKTOP_BACKGROUND) ∧
    (∀ pre w post, stable_sort DesktopWindow.key_leb wins = pre ++ w :: post →
       covers w x y = true → Forall (λ w, covers w x y = false) post →
       ∃ g, Compositor.compose_desktop size [w] = Return g ∧
         cell (SurfaceFrame.rows f) x y = cell (SurfaceFrame.rows g) x y).
Proof.
  intros (ws & Ews & ->)%compose_desktop_puts. set (W := SurfaceSize.width size) in *.
  set (H := SurfaceSize.height size) in *.
  assert (∀ l v, gather (window_puts W H) l = Return v → ∀ x y,
    Forall (λ w, covers w x y = false) l → last_char x y v = None) as Hnone.
  { intros l v Hv x y Hl. apply last_char_None. intros p Hp. apply not_true_iff_false.
    intros [Ex%N.eqb_eq Ey%N.eqb_eq]%andb_true_iff.
    destruct (gather_elem _ _ _ _ Hv Hp) as (win & wv & Hin & Hw & Hpw).
    pose proof (window_puts_inside _ _ _ _ _ Hw Hpw) as Hc. rewrite Ex, Ey in Hc.
    rewrite Forall_forall in Hl. by rewrite Hl in Hc. }
  split; [apply put_all_spec, blank_shape|]. intros x y Hx Hy.
  rewrite (proj2 (put_all_spec W H ws (blank size) (blank_shape size)) x y Hx Hy). split.
  - intros Hl. rewrite (Hnone _ _ Ews x y); [by apply blank_cell|].
    by rewrite stable_sort_Permutation.
  - intros pre w post Es Hc Hpost. rewrite Es in Ews.
    apply gather_app in Ews as (w1 & w2 & _ & E2 & ->). simpl in E2.
    apply bind_Return in E2 as (ww & Eww & (wp & Ewp & [= <-])%bind_Return).
    assert (Compositor.compose_desktop size [w] = Return (SurfaceFrame.from_rows (put_all ww (blank size))
      (len [w]) (latest_timestamp ((ViewFrame.timestamp_ns ∘ DesktopWindow.frame) <$> [w])))) as Hg.
    { unfold Compositor.compose_desktop. fold (blank size). simpl.
      rewrite (window_puts_spec W H w (blank size) (blank_shape size)), Eww. done. }
    eexists. split; [exact Hg|]. cbn [SurfaceFrame.rows SurfaceFrame.from_rows].
    rewrite (proj2 (put_all_spec W H ww (blank size) (blank_shape size)) x y Hx Hy).
    rewrite !last_char_app, (Hnone _ _ Ewp x y Hpost).
    destruct (window_puts_covers _ _ _ _ _ _ Eww Hc Hx Hy) as (p & Hp & Ha).
    destruct (last_char_Some x y ww p Hp Ha) as [ch ->]. done.
Qed.

(** Two windows that overlap on a surface of eight by five cells. *)
Definition small_window (id x y w h z : N) : DesktopWindow.t :=
  DesktopWindow.with_z_index z (DesktopWindow.new
    (ViewFrame.new (ViewId.mk id) ViewKind.StatusLine 1 (ViewContent.status_line [104; 105]) 0)
    (SurfaceRect.new x y w h)).
Definition small_surface : SurfaceSize.t := SurfaceSize.new 8 5.
Definition overlapping : list DesktopWindow.t := [small_window 1 2 1 5 4 7; small_window 2 0 0 4 3 3].

Lemma topmost_window_wins_witness :
  ∃ f, Compositor.compose_desktop small_surface overlapping = Return f ∧
    shape 8 5 (SurfaceFrame.rows f) ∧
    cell (SurfaceFrame.rows f) 7 0 = Some DESKTOP_BACKGROUND ∧
    ∃ g, Compositor.compose_desktop small_surface [small_window 1 2 1 5 4 7] = Return g ∧
      cell (SurfaceFrame.rows f) 3 2 = cell (SurfaceFrame.rows g) 3 2.
Proof.
  destruct (Compositor.compose_desktop small_surface overlapping) as [f| |] eqn:E; [|by vm_compute in E..].
  exists f. split; [done|]. destruct (topmost_window_wins small_surface overlapping f E) as [Hs Hc].
  split_and!; [done| |].
  - apply (Hc 7 0); [done..|]. by repeat constructor.
  - apply (proj2 (Hc 3 2 ltac:(done) ltac:(done)) [small_window 2 0 0 4 3 3] (small_window 1 2 1 5 4 7) []);
      [by vm_compute|done|constructor].
Defined.

(** The width of a surface counts bytes: with a character outside ASCII on it, the width is
    not the number of cells of a row. *)
Theorem surface_width_counts_bytes :
  ∃ f, Compositor.compose_desktop (SurfaceSize.new 6 3)
      [DesktopWindow.new (ViewFrame.new (ViewId.mk 1) ViewKind.StatusLine 1
         (ViewContent.status_line [233]) 0) (SurfaceRect.new 0 0 6 3)] = Return f ∧
    SurfaceFrame.width f = 7 ∧ Forall (λ row, len row = 6) (SurfaceFrame.rows f).
Proof.
  eexists. split; [by vm_compute|]. split; [by vm_compute|]. vm_compute. repeat constructor.
Qed.
End CanvasSpec.

(** ** Tiles *)
Module TileSpec.

(** Slices that follow one another from [start] and end at [stop]. *)
Inductive consecutive : N → list (N * N) → N → Prop :=
| consecutive_nil a : consecutive a [] a
| consecutive_cons a n l b : consecutive (a + n) l b → consecutive a ((a, n) :: l) b.

Lemma consecutive_snoc a l b n : consecutive a l b → consecutive a (l ++ [(b, n)]) (b + n).
Proof.
  induction 1 as [a|a m l b _ IH]; simpl; constructor; [constructor|done].
Qed.

(** Each position from [a] up to [b] is in exactly one slice. *)
Lemma consecutive_unique a l b x :
  consecutive a l b → a ≤ b ∧
  (a ≤ x < b → ∃ i s, l !! i = Some s ∧ s.1 ≤ x < s.1 + s.2 ∧
     ∀ j s', l !! j = Some s' → s'.1 ≤ x < s'.1 + s'.2 → j = i) ∧
  (∀ i s, l !! i = Some s → a ≤ s.1 ∧ s.1 + s.2 ≤ b).
Proof.
  induction 1 as [a|a n l b _ (Hle & IH & Hb)].
  { split_and!; [lia|lia|]. intros i s Hi. by rewrite lookup_nil in Hi. }
  split_and!; [lia| |].
  - intros Hx. destruct (decide (x < a + n)) as [Hlt|Hge].
    + exists O, (a, n). split_and!; [done|simpl; lia..|]. intros [|j] s' Hj Hs'; [done|].
      simpl in Hj. specialize (Hb j s' Hj). lia.
    + destruct IH as (i & s & Hi & Hs & Hu); [lia|]. exists (S i), s. split_and!; [done|lia..|].
      intros [|j] s' Hj Hs'; [|f_equal; by eapply Hu]. simpl in Hj. injection Hj as <-. simpl in Hs'. lia.
  - intros [|i] s Hi; simpl in Hi; [injection Hi as <-; simpl; lia|].
    specialize (Hb i s Hi). lia.
Qed.

(** The loop of [partition_extent] after [n] iterations. *)
Definition extent_sum (base remainder n : N) : N := n * base + N.min n remainder.

Lemma partition_loop base remainder (n : nat) :
  ∃ l, foldl (λ '(slices, offset) index,
         let size := base + N.b2n (index <? remainder) in
         (slices ++ [(offset, size)], offset + size)) ([], 0) (N.of_nat <$> seq 0 n)
       = (l, extent_sum base remainder (N.of_nat n)) ∧ length l = n ∧
    consecutive 0 l (extent_sum base remainder (N.of_nat n)) ∧
    Forall (λ s, base ≤ s.2 ≤ base + 1) l.
Proof.
  induction n as [|n (l & E & Hl & Hc & Hb)].
  { exists []. unfold extent_sum. rewrite N.mul_0_l, N.min_0_l. split_and!; constructor. }
  rewrite seq_S, fmap_app, foldl_app, E. simpl.
  assert (extent_sum base remainder (N.of_nat (S n))
    = extent_sum base remainder (N.of_nat n) + (base + N.b2n (N.of_nat n <? remainder))) as Hs.
  { unfold extent_sum. destruct (N.ltb_spec (N.of_nat n) remainder); simpl; lia. }
  eexists. split; [by rewrite Hs|]. split_and!.
  - rewrite length_app. simpl. lia.
  - rewrite Hs. by apply consecutive_snoc.
  - apply Forall_app. split; [done|]. constructor; [|constructor]. simpl.
    destruct (N.of_nat n <? remainder); simpl; lia.
Qed.

Lemma partition_extent_spec total count :
  0 < count →
  length (partition_extent total count) = N.to_nat count ∧
  consecutive 0 (partition_extent total count) total ∧
  Forall (λ s, total / count ≤ s.2 ≤ total / count + 1) (partition_extent total count).
Proof.
  intros Hc. unfold partition_extent, range. rewrite (proj2 (N.eqb_neq count 0)) by lia.
  rewrite N.sub_0_r. change (N.to_nat 0) with O. cbv zeta.
  destruct (partition_loop (total / count) (total mod count) (N.to_nat count)) as (l & E & Hl & Hs & Hb).
  cbv zeta in E. rewrite E.
  simpl. rewrite N2Nat.id in Hs. split_and!; [done| |done].
  assert (extent_sum (total / count) (total mod count) count = total) as Et; [|by rewrite Et in Hs].
  unfold extent_sum. pose proof (N.div_mod total count). pose proof (N.mod_lt total count). lia.
Qed.

(** The rectangle of a window contains a cell. *)
Definition contains (r : SurfaceRect.t) (x y : N) : Prop :=
  SurfaceRect.x r ≤ x < SurfaceRect.x r + SurfaceRect.width r ∧
  SurfaceRect.y r ≤ y < SurfaceRect.y r + SurfaceRect.height r.

Definition tile_rects (axis : option SplitAxis.t) (size : SurfaceSize.t) (n : N) : list SurfaceRect.t :=
  match axis with
  | Some SplitAxis.Vertical => partition_rects_vertical size n
  | _ => partition_rects_horizontal size n
  end.

Lemma tile_rects_partition axis size n x y :
  0 < n → x < SurfaceSize.width size → y < SurfaceSize.height size →
  length (tile_rects axis size n) = N.to_nat n ∧
  ∃ i r, tile_rects axis size n !! i = Some r ∧ contains r x y ∧
    ∀ j r', tile_rects axis size n !! j = Some r' → contains r' x y → j = i.
Proof.
  intros Hn Hx Hy. unfold tile_rects, partition_rects_vertical, partition_rects_horizontal.
  destruct axis as [[]|].
  2:{ destruct (partition_extent_spec (SurfaceSize.width size) n Hn) as (Hl & Hc & _).
      destruct (consecutive_unique _ _ _ x Hc) as (_ & Hu & _). rewrite length_fmap. split; [done|].
      destruct Hu as (i & [sx sw] & Hi & Hs & Hu); [lia|]. eexists i, _.
      rewrite list_lookup_fmap, Hi. split_and!; [done|split; simpl in *; lia|].
      intros j r'. rewrite list_lookup_fmap. intros ([s1 s2] & Hj & ->)%fmap_Some [Hcx _].
      by eapply Hu. }
  all: destruct (partition_extent_spec (SurfaceSize.height size) n Hn) as (Hl & Hc & _);
      destruct (consecutive_unique _ _ _ y Hc) as (_ & Hu & _); rewrite length_fmap; (split; [done|]);
      destruct Hu as (i & [sy sh] & Hi & Hs & Hu); [lia|]; eexists i, _;
      rewrite list_lookup_fmap, Hi; (split_and!; [done|split; simpl in *; lia|]);
      intros j r'; rewrite list_lookup_fmap; intros ([s1 s2] & Hj & ->)%fmap_Some [_ Hcy];
      by eapply Hu.
Qed.

(** The windows of a tiled workspace partition the surface: there is one window per
    tile, and every cell of the surface lies in exactly one of them, whatever the number of
    tiles, the size and the split axis. *)
Theorem tiles_partition_the_surface drawn size snapshot x y :
  WorkspaceRenderSnapshot.tiles snapshot ≠ [] →
  x < SurfaceSize.width size → y < SurfaceSize.height size →
  let wins := desktop_windows_from_workspace_snapshot drawn size snapshot in
  length wins = length (WorkspaceRenderSnapshot.tiles snapshot) ∧
  ∃ i w, wins !! i = Some w ∧ contains (DesktopWindow.rect w) x y ∧
    ∀ j w', wins !! j = Some w' → contains (DesktopWindow.rect w') x y → j = i.
Proof.
  intros Hne Hx Hy. unfold desktop_windows_from_workspace_snapshot.
  destruct (WorkspaceRenderSnapshot.tiles snapshot) as [|t0 ts] eqn:Et; [done|]. rewrite <- Et. clear Hne.
  unfold workspace_tile_windows. cbv zeta.
  set (tiles := stable_sort _ (WorkspaceRenderSnapshot.tiles snapshot)).
  assert (length tiles = length (WorkspaceRenderSnapshot.tiles snapshot)) as Hlen
    by apply Permutation_length, stable_sort_Permutation.
  assert (0 < len tiles) as Hpos by (unfold len; rewrite Hlen, Et; simpl; lia).
  fold (tile_rects (WorkspaceLayoutSnapshot.split_axis (WorkspaceRenderSnapshot.layout snapshot)) size (len tiles)).
  destruct (tile_rects_partition (WorkspaceLayoutSnapshot.split_axis (WorkspaceRenderSnapshot.layout snapshot))
    size (len tiles) x y Hpos Hx Hy) as (Hl & i & r & Hi & Hc & Hu).
  set (rects := tile_rects _ size (len tiles)) in *.
  assert (length rects = length tiles) as Hrl by (rewrite Hl; unfold len; lia).
  set (F := λ i '(tile, rect), _).
  assert (∀ k w, imap F (zip tiles rects) !! k = Some w →
    ∃ r, rects !! k = Some r ∧ DesktopWindow.rect w = r) as Hw.
  { intros k w. rewrite list_lookup_imap. intros ([tile r'] & Hz & ->)%fmap_Some.
    apply lookup_zip_Some in Hz as [Ht Hr]. exists r'. split; [done|]. unfold F.
    destruct (tile_window_frame _ _ _) as [[fr ro] tb]. by destruct (WorkspaceTileRenderSnapshot.is_focused tile). }
  split; [rewrite length_imap, length_zip; lia|].
  destruct (lookup_lt_is_Some_2 (imap F (zip tiles rects)) i) as [w Ew].
  { rewrite length_imap, length_zip. apply lookup_lt_Some in Hi. lia. }
  exists i, w. destruct (Hw i w Ew) as (r1 & Hr1 & Hr1w). rewrite Hi in Hr1. injection Hr1 as <-.
  split_and!; [done|by rewrite Hr1w|]. intros j w' Ej Hcj.
  destruct (Hw j w' Ej) as (r2 & Hr2 & Hr2w). rewrite Hr2w in Hcj. by eapply Hu.
Qed.

(** Three tiles side by side on ten columns. *)
Definition bare_tile (i : nat) : WorkspaceTileRenderSnapshot.t :=
  WorkspaceTileRenderSnapshot.mk i (i =? 0)%nat None [] None None.
Definition three_columns : WorkspaceRenderSnapshot.t :=
  WorkspaceRenderSnapshot.mk None None None None None
    (WorkspaceLayoutSnapshot.mk (Some SplitAxis.Vertical) 0 []) (bare_tile <$> [2; 0; 1]%nat) 3 0 [] [].

Lemma tiles_partition_the_surface_witness :
  let wins := desktop_windows_from_workspace_snapshot (λ i, ViewId.mk (N.of_nat i)) (SurfaceSize.new 10 4)
                three_columns in
  (DesktopWindow.rect <$> wins)
    = [SurfaceRect.new 0 0 4 4; SurfaceRect.new 4 0 3 4; SurfaceRect.new 7 0 3 4] ∧
  length wins = length (WorkspaceRenderSnapshot.tiles three_columns) ∧
  ∃ i w, wins !! i = Some w ∧ contains (DesktopWindow.rect w) 5 2 ∧
    ∀ j w', wins !! j = Some w' → contains (DesktopWindow.rect w') 5 2 → j = i.
Proof.
  split; [by vm_compute|].
  apply (tiles_partition_the_surface (λ i, ViewId.mk (N.of_nat i)) (SurfaceSize.new 10 4) three_columns 5 2);
    done.
Defined.
End TileSpec.

(** ** The text cursor *)
Module CursorSpec.

(** Where the character in column [k] of a line is drawn. *)
Definition column_x (rect : RasterRect.t) (k : N) : N := RasterRect.x rect + 2 + k * RASTER_CELL_WIDTH.

(** The rasterized cursor is drawn one column to the right of its position: text in
    column [k] of a line is drawn at [column_x k], the next character follows at
    [column_x (k + 1)], and the cursor of column [k] is filled at [column_x (k + 1)].  (The
    character canvas draws it at column [k].) *)
Theorem raster_cursor_is_one_column_right `{RenderTarget T} rect cur (t : T) y c text :
  column_x rect (CursorPosition.column cur + 1) ≤ u64_max →
  RasterRect.y rect + RASTER_CELL_HEIGHT + 1 + CursorPosition.line cur * RASTER_CELL_HEIGHT ≤ u64_max →
  draw_text_with_font (column_x rect (CursorPosition.column cur)) y (c :: text) DESKTOP_FONT TEXT_COLOR t
    = (t ← draw_glyph (column_x rect (CursorPosition.column cur)) y DESKTOP_FONT c TEXT_COLOR t;
       if target_width t <=? column_x rect (CursorPosition.column cur + 1) then Return t
       else draw_text_with_font (column_x rect (CursorPosition.column cur + 1)) y text DESKTOP_FONT TEXT_COLOR t) ∧
  raster_cursor rect (Some cur) t
    = fill_rect (RasterRect.new (column_x rect (CursorPosition.column cur + 1))
        (RasterRect.y rect + RASTER_CELL_HEIGHT + 1 + CursorPosition.line cur * RASTER_CELL_HEIGHT)
        4 8) CURSOR_COLOR t.
Proof.
  unfold column_x, RASTER_CELL_WIDTH, RASTER_CELL_HEIGHT. simpl BitmapFont.advance_x.
  simpl BitmapFont.glyph_height. intros Hx Hy. split.
  - cbn [draw_text_with_font]. simpl BitmapFont.advance_x.
    assert (saturating_add (RasterRect.x rect + 2 + CursorPosition.column cur * 9) 9
      = RasterRect.x rect + 2 + (CursorPosition.column cur + 1) * 9) as -> by (unfold saturating_add; lia).
    done.
  - unfold raster_cursor, RASTER_CELL_WIDTH, RASTER_CELL_HEIGHT, add_u64, mul_u64, checked_add.
    simpl BitmapFont.advance_x. simpl BitmapFont.glyph_height.
    do 8 (rewrite (proj2 (N.leb_le _ _)) by lia; cbn [expect mbind outcome_bind]).
    do 2 f_equal; lia.
Qed.

Lemma raster_cursor_is_one_column_right_witness :
  ∃ b, RgbaBuffer.new 30 30 DESKTOP_BACKGROUND_COLOR = Return b ∧
  raster_cursor (RasterRect.new 0 0 27 30) (Some CursorPosition.origin) b
    = fill_rect (RasterRect.new 11 11 4 8) CURSOR_COLOR b.
Proof.
  eexists. split; [done|].
  apply (raster_cursor_is_one_column_right (RasterRect.new 0 0 27 30) CursorPosition.origin _ 0 65 []);
    by vm_compute.
Defined.
End CursorSpec.

(** ** A damaged redraw, evaluated *)
Module DamageExample.
Import RectSpec.

Definition screen : RgbaBuffer.t :=
  match RgbaBuffer.new 10 11 (RgbaColor.new 9 9 9 255) with Return b => b | _ => RgbaBuffer.mk 0 0 [] end.
Definition one_window : list DesktopWindow.t := [CanvasSpec.small_window 1 0 0 1 1 0].

Lemma damaged_redraw_is_exact_witness :
  ∃ stats tf stats' td,
    Compositor.render_desktop_to_target one_window screen = Return (stats, tf) ∧
    Compositor.render_desktop_to_target_with_damage one_window (Some (RasterRect.new 3 3 4 4)) screen
      = Return (stats', td) ∧
    ∀ x y, pixel x y td = if inside (RasterRect.new 3 3 4 4) x y then pixel x y tf
                          else pixel x y screen.
Proof.
  destruct (Compositor.render_desktop_to_target one_window screen) as [[stats tf]| |] eqn:E;
    [|by vm_compute in E..].
  exists stats, tf.
  destruct (DamageSpec.damaged_redraw_is_exact one_window (RasterRect.new 3 3 4 4) screen stats tf)
    as (stats' & td & Ed & Hd).
  - apply (StoreSpec.new_buffer_ok 10 11 (RgbaColor.new 9 9 9 255)). by vm_compute.
  - by vm_compute.
  - by vm_compute.
  - split; by vm_compute.
  - constructor; [split; by vm_compute|constructor].
  - exists 3, 3. split_and!; by vm_compute.
  - done.
  - exists stats', td. exact (conj eq_refl (conj Ed Hd)).
Defined.
End DamageExample.
