(* ===== verification/TextRender.v ===== *)
(** * Text renderer ([text_renderer_host])

    Frames as text, whole or as the lines that changed since the last frame.  Line and
    column numbers are [usize] values in [N]; a text is a list of characters. *)

From S2P Require Import Prelude Editor Views.
Open Scope list_scope.
Open Scope N_scope.

(* text_renderer_host/src/lib.rs:36-38 SEPARATOR_WIDTH *)
Definition SEPARATOR_WIDTH : N := 80.

Definition spaces (n : N) : Str.t := replicate (N.to_nat n) 32.
Definition number (n : N) : Str.t := Str.of_string (pretty n).

Module ViewCache.
(* text_renderer_host/src/lib.rs:40-47 ViewCache *)
Record t := mk { lines : gmap N Str.t; last_cursor : option CursorPosition.t }.
#[global] Instance rebuild_t : Rebuild t := λ c, mk (lines c) (last_cursor c).
(* text_renderer_host/src/lib.rs:50-55 ViewCache::new *)
Definition new : t := mk ∅ None.
(* text_renderer_host/src/lib.rs:57-60 ViewCache::clear *)
Definition clear (c : t) : t := c <| lines := ∅ |> <| last_cursor := None |>.
(* text_renderer_host/src/lib.rs:62-64 ViewCache::get_line *)
Definition get_line (i : N) (c : t) : option Str.t := lines c !! i.
(* text_renderer_host/src/lib.rs:66-68 ViewCache::set_line *)
Definition set_line (i : N) (content : Str.t) (c : t) : t := c <| lines ::= <[i := content]> |>.
End ViewCache.

Module RenderStats.
(* text_renderer_host/src/lib.rs:71-78 RenderStats *)
Record t := mk { chars_written_per_frame : N; lines_redrawn_per_frame : N }.
#[global] Instance rebuild_t : Rebuild t := λ s,
  mk (chars_written_per_frame s) (lines_redrawn_per_frame s).
Definition default : t := mk 0 0.
End RenderStats.

Module TextRenderer.
(* text_renderer_host/src/lib.rs:80-89 TextRenderer *)
Record t := mk {
  last_main_revision : option N;
  last_status_revision : option N;
  view_cache : ViewCache.t;
  stats : RenderStats.t
}.
#[global] Instance rebuild_t : Rebuild t := λ r,
  mk (last_main_revision r) (last_status_revision r) (view_cache r) (stats r).
(* text_renderer_host/src/lib.rs:92-100 TextRenderer::new *)
Definition new : t := mk None None ViewCache.new RenderStats.default.

(* text_renderer_host/src/lib.rs:107-116 TextRenderer::needs_redraw *)
Definition needs_redraw (main_frame status_frame : option ViewFrame.t) (r : t) : bool :=
  let main_changed := negb (bool_decide (ViewFrame.revision <$> main_frame = last_main_revision r)) in
  let status_changed := negb (bool_decide (ViewFrame.revision <$> status_frame = last_status_revision r)) in
  main_changed || status_changed.

(** [char_indices().nth(col)] is there exactly for [col] below the number of characters,
    and [split_at] of its byte index splits before that character. *)
(* text_renderer_host/src/lib.rs:292-314 TextRenderer::render_line_with_cursor *)
Definition render_line_with_cursor (line : Str.t) (col : N) : Str.t :=
  if col <? len line
  then take (N.to_nat col) line ++ [124] ++ drop (N.to_nat col) line
  else
    let char_count := len line in
    if col =? char_count then line ++ [124]
    else line ++ spaces (N.min (col - char_count) 1000) ++ [124].

(* text_renderer_host/src/lib.rs:334-355 TextRenderer::render_text_buffer *)
Definition render_cursor_line (line : Str.t) (col : N) : Str.t :=
  if col <=? len line
  then take (N.to_nat col) line ++ [124] ++ drop (N.to_nat col) line ++ [10]
  else line ++ spaces (N.min (saturating_sub col (len line)) 1000) ++ [124] ++ [10].

Fixpoint render_lines_from (i : N) (lines : list Str.t) (cursor : option CursorPosition.t) : Str.t :=
  match lines with
  | [] => []
  | line :: lines =>
      (match cursor with
       | Some cur => if CursorPosition.line cur =? i
                     then render_cursor_line line (CursorPosition.column cur) else line ++ [10]
       | None => line ++ [10]
       end) ++ render_lines_from (i + 1) lines cursor
  end.

(** [lines.len() + 1000] does not overflow, as a vector has at most [isize::MAX] bytes. *)
(* text_renderer_host/src/lib.rs:327-375 TextRenderer::render_text_buffer *)
Definition render_text_buffer (lines : list Str.t) (cursor : option CursorPosition.t) : Str.t :=
  render_lines_from 0 lines cursor ++
  match cursor with
  | Some cur =>
      if (len lines <=? CursorPosition.line cur) && (CursorPosition.line cur <? len lines + 1000)
      then replicate (N.to_nat (CursorPosition.line cur - len lines)) 10
           ++ spaces (N.min (CursorPosition.column cur) 1000) ++ [124; 10]
      else []
  | None => []
  end.

(* text_renderer_host/src/lib.rs:316-325 TextRenderer::render_view_frame *)
Definition render_view_frame (frame : ViewFrame.t) : Str.t :=
  match ViewFrame.content frame with
  | ViewContent.TextBuffer lines => render_text_buffer lines (ViewFrame.cursor frame)
  | ViewContent.StatusLine text => text ++ [10]
  | ViewContent.Panel metadata => Str.of_string "[Panel: " ++ metadata ++ Str.of_string "]" ++ [10]
  end.

(* text_renderer_host/src/lib.rs:377-383 TextRenderer::render_status_line *)
Definition render_status_line (frame : ViewFrame.t) : Str.t :=
  match ViewFrame.content frame with
  | ViewContent.StatusLine text => text ++ [10]
  | _ => Str.of_string "(invalid status view)" ++ [10]
  end.

(* text_renderer_host/src/lib.rs:118-162 TextRenderer::render_snapshot *)
Definition render_snapshot (main_view status_view : option ViewFrame.t) (r : t) : Str.t * t :=
  let r := r <| stats := RenderStats.mk 0 0 |> in
  let '(out1, r) :=
    match main_view with
    | Some frame => (render_view_frame frame, r <| last_main_revision := Some (ViewFrame.revision frame) |>)
    | None => (Str.of_string "(no view)" ++ [10],
               r <| last_main_revision := None |> <| view_cache ::= ViewCache.clear |>)
    end in
  let separator := 10 :: replicate (N.to_nat SEPARATOR_WIDTH) 0x2500 ++ [10] in
  let '(out2, r) :=
    match status_view with
    | Some frame => (render_status_line frame, r <| last_status_revision := Some (ViewFrame.revision frame) |>)
    | None => (Str.of_string "(no status)" ++ [10], r <| last_status_revision := None |>)
    end in
  let output := out1 ++ separator ++ out2 in
  (output, r <| stats ::= (λ s, s <| RenderStats.chars_written_per_frame := N.of_nat (Str.len output) |>) |>).

(** What line [i] of a buffer looks like: with the cursor if it is on it. *)
(* text_renderer_host/src/lib.rs:235-240 TextRenderer::render_text_buffer_incremental *)
Definition rendered (cursor : option CursorPosition.t) (i : N) (line : Str.t) : Str.t :=
  match cursor with
  | Some cur => if CursorPosition.line cur =? i
                then render_line_with_cursor line (CursorPosition.column cur) else line
  | None => line
  end.

(** The loop over the lines from line [i] on: the lines that changed, and the cache. *)
(* text_renderer_host/src/lib.rs:233-267 TextRenderer::render_text_buffer_incremental *)
Fixpoint update_lines (cursor : option CursorPosition.t) (i : N) (lines : list Str.t)
    (c : ViewCache.t) : list (N * Str.t) * ViewCache.t :=
  match lines with
  | [] => ([], c)
  | line :: lines =>
      let text := rendered cursor i line in
      if bool_decide (ViewCache.get_line i c = Some text)
      then update_lines cursor (i + 1) lines c
      else let '(us, c) := update_lines cursor (i + 1) lines (ViewCache.set_line i text c) in
           ((i, text) :: us, c)
  end.

Definition show_update (u : N * Str.t) : Str.t :=
  Str.of_string "[L" ++ number u.1 ++ Str.of_string "] " ++ u.2 ++ [10].

(* text_renderer_host/src/lib.rs:223-290 TextRenderer::render_text_buffer_incremental *)
Definition render_text_buffer_incremental (lines : list Str.t) (cursor : option CursorPosition.t) (r : t)
    : Str.t * t :=
  let '(us, c) := update_lines cursor 0 lines (view_cache r) in
  let output := us ≫= show_update in
  let chars_written := sumN ((λ u, N.of_nat (Str.len u.2)) <$> us) in
  let lines_changed := len us in
  let cursor_moved := negb (bool_decide (cursor = ViewCache.last_cursor (view_cache r))) in
  let '(output, chars_written) :=
    match cursor with
    | Some cur =>
        if cursor_moved && (lines_changed =? 0)
        then (output ++ Str.of_string "[CURSOR] " ++ number (CursorPosition.line cur) ++ Str.of_string ":"
                ++ number (CursorPosition.column cur) ++ [10], chars_written + 10)
        else (output, chars_written)
    | None => (output, chars_written)
    end in
  let r := r <| view_cache := c <| ViewCache.last_cursor := cursor |> |>
             <| stats := RenderStats.mk chars_written lines_changed |> in
  (match output with [] => Str.of_string "(no changes)" ++ [10] | _ => output end, r).

(* text_renderer_host/src/lib.rs:210-221 TextRenderer::render_view_incremental *)
Definition render_view_incremental (frame : ViewFrame.t) (r : t) : Str.t * t :=
  match ViewFrame.content frame with
  | ViewContent.TextBuffer lines => render_text_buffer_incremental lines (ViewFrame.cursor frame) r
  | _ => (render_view_frame frame, r)
  end.

(* text_renderer_host/src/lib.rs:164-208 TextRenderer::render_incremental *)
Definition render_incremental (main_view status_view : option ViewFrame.t) (r : t) : Str.t * t :=
  let r := r <| stats := RenderStats.mk 0 0 |> in
  let '(out1, r) :=
    match main_view with
    | Some frame =>
        let '(changes, r) := render_view_incremental frame r in
        (changes, r <| last_main_revision := Some (ViewFrame.revision frame) |>)
    | None =>
        let '(out, r) :=
          if bool_decide (ViewCache.lines (view_cache r) = ∅) then ([], r)
          else (Str.of_string "(view cleared)" ++ [10], r <| view_cache ::= ViewCache.clear |>) in
        (out, r <| last_main_revision := None |>)
    end in
  match status_view with
  | Some frame =>
      let '(out2, r) :=
        if negb (bool_decide (Some (ViewFrame.revision frame) = last_status_revision r))
        then (Str.of_string "[STATUS] " ++ Str.trim (render_status_line frame) ++ [10],
              r <| stats ::= (λ s, s <| RenderStats.chars_written_per_frame ::=
                     N.add (N.of_nat (Str.len (render_status_line frame))) |>) |>)
        else ([], r) in
      (out1 ++ out2, r <| last_status_revision := Some (ViewFrame.revision frame) |>)
  | None => (out1, r <| last_status_revision := None |>)
  end.
End TextRenderer.

(** ** Properties *)
Module TextRenderSpec.
Import TextRenderer.

(** The lines of a buffer as they should appear. *)
Definition picture_of (cursor : option CursorPosition.t) (lines : list Str.t) (i : N) : option Str.t :=
  rendered cursor i <$> lines !! N.to_nat i.

(** A reader that keeps the last text it was sent for each line. *)
Definition apply_updates (us : list (N * Str.t)) (screen : gmap N Str.t) : gmap N Str.t :=
  foldl (λ m u, <[u.1 := u.2]> m) screen us.

Lemma update_lines_spec cursor i lines c us c' :
  update_lines cursor i lines c = (us, c') →
  ViewCache.lines c' = apply_updates us (ViewCache.lines c) ∧
  ViewCache.last_cursor c' = ViewCache.last_cursor c ∧
  ∀ j, ViewCache.lines c' !! j =
    if (i <=? j) && (j <? i + len lines)
    then rendered cursor j <$> lines !! N.to_nat (j - i) else ViewCache.lines c !! j.
Proof.
  revert i c us c'. induction lines as [|line lines IH]; intros i c us c'; simpl.
  { intros [= <- <-]. split_and!; [done..|]. intros j. change (len []) with 0. rewrite N.add_0_r.
    destruct (N.leb_spec i j), (N.ltb_spec j i); (done || lia). }
  assert (∀ j d, ViewCache.lines d !! i = Some (rendered cursor i line) →
    (if (i + 1 <=? j) && (j <? i + 1 + len lines)
     then rendered cursor j <$> lines !! N.to_nat (j - (i + 1)) else ViewCache.lines d !! j)
    = if (i <=? j) && (j <? i + len (line :: lines))
      then rendered cursor j <$> (line :: lines) !! N.to_nat (j - i) else ViewCache.lines d !! j) as Hj.
  { intros j d Hd. unfold len. cbn [length].
    destruct (N.leb_spec (i + 1) j), (N.ltb_spec j (i + 1 + N.of_nat (length lines))),
      (N.leb_spec i j), (N.ltb_spec j (i + N.of_nat (S (length lines)))); try lia; simpl; try done.
    - replace (N.to_nat (j - i)) with (S (N.to_nat (j - (i + 1)))) by lia. done.
    - assert (j = i) as -> by lia. by rewrite N.sub_diag. }
  case_bool_decide as Hcache.
  - intros E. destruct (IH _ _ _ _ E) as (Hl & Hc & Hlk). split_and!; [done..|].
    intros j. rewrite Hlk. by apply Hj.
  - destruct (update_lines cursor (i + 1) lines (ViewCache.set_line i (rendered cursor i line) c))
      as [us1 c1] eqn:E. intros [= <- <-]. destruct (IH _ _ _ _ E) as (Hl & Hc & Hlk).
    split_and!; [by rewrite Hl|by rewrite Hc|].
    intros j. rewrite Hlk, Hj by (simpl; by rewrite lookup_insert_eq). simpl.
    destruct ((i <=? j) && _) eqn:Eb; [done|]. rewrite lookup_insert_ne; [done|]. intros ->.
    rewrite N.leb_refl in Eb. simpl in Eb. apply N.ltb_ge in Eb. unfold len in Eb. simpl in Eb. lia.
Qed.

(** Incremental rendering keeps a reader up to date: a reader that applies the line
    updates of each frame to what it showed before, starting from what the renderer's cache
    says, shows after the frame exactly the rendered lines of the buffer, and the cache
    agrees with the reader again; a line that did not change is not sent. *)
Theorem incremental_updates_are_enough cursor lines c us c' :
  update_lines cursor 0 lines c = (us, c') →
  ViewCache.lines c' = apply_updates us (ViewCache.lines c) ∧
  (∀ i, i < len lines → apply_updates us (ViewCache.lines c) !! i = picture_of cursor lines i) ∧
  (∀ i text, (i, text) ∈ us → ViewCache.lines c !! i ≠ Some text ∧ picture_of cursor lines i = Some text).
Proof.
  intros E. destruct (update_lines_spec _ _ _ _ _ _ E) as (Hl & _ & Hlk). split_and!; [done| |].
  - intros i Hi. rewrite <- Hl, Hlk. rewrite (proj2 (N.leb_le 0 i)) by lia.
    rewrite (proj2 (N.ltb_lt i (0 + len lines))) by lia. simpl. by rewrite N.sub_0_r.
  - clear Hl Hlk. assert (∀ l k d vs d', update_lines cursor k l d = (vs, d') →
      (∀ i, k ≤ i → ViewCache.lines d !! i = ViewCache.lines c !! i) →
      ∀ i text, (i, text) ∈ vs → k ≤ i ∧ ViewCache.lines c !! i ≠ Some text ∧
        rendered cursor i <$> l !! N.to_nat (i - k) = Some text) as Hall.
    { induction l as [|line l IH]; intros k d vs d'; simpl.
      - intros [= <- <-] _ i text Hin. by apply elem_of_nil in Hin.
      - assert (∀ i (x : Str.t), k + 1 ≤ i → rendered cursor i <$> (line :: l) !! N.to_nat (i - k)
          = rendered cursor i <$> l !! N.to_nat (i - (k + 1))) as Hshift.
        { intros i x Hi. replace (N.to_nat (i - k)) with (S (N.to_nat (i - (k + 1)))) by lia. done. }
        case_bool_decide as Hc.
        + intros E1 Hsame i text Hin. destruct (IH _ _ _ _ E1) with (i := i) (text := text) as (Hk & ? & Ht); [|done|].
          { intros j Hj. apply Hsame. lia. }
          split_and!; [lia|done|]. rewrite Hshift by (done || lia). done.
        + destruct (update_lines cursor (k + 1) l (ViewCache.set_line k (rendered cursor k line) d)) as [vs1 d1] eqn:E1.
          intros [= <- <-] Hsame i text [[= -> ->]|Hin]%elem_of_cons.
          * split_and!; [lia| |by rewrite N.sub_diag]. rewrite <- Hsame by lia. done.
          * destruct (IH _ _ _ _ E1) with (i := i) (text := text) as (Hk & ? & Ht); [|done|].
            { intros j Hj. simpl. rewrite lookup_insert_ne by lia. apply Hsame. lia. }
            split_and!; [lia|done|]. rewrite Hshift by (done || lia). done. }
    intros i text Hin. destruct (Hall lines 0 c us c' E) with (i := i) (text := text) as (_ & ? & Ht); [done..|].
    split; [done|]. by rewrite N.sub_0_r in Ht.
Qed.

Lemma incremental_updates_are_enough_witness :
  ∃ us c', update_lines (Some (CursorPosition.new 1 0)) 0 [[97]; [98]]
      (ViewCache.mk {[0 := [97]; 1 := [120]]} None) = (us, c') ∧
    us = [(1, [124; 98])] ∧
    ∀ i, i < len [[97]; [98]] →
      apply_updates us {[0 := [97]; 1 := [120]]} !! i
      = picture_of (Some (CursorPosition.new 1 0)) [[97]; [98]] i.
Proof.
  eexists _, _. split; [by vm_compute|]. split; [done|].
  destruct (incremental_updates_are_enough (Some (CursorPosition.new 1 0)) [[97]; [98]]
    (ViewCache.mk {[0 := [97]; 1 := [120]]} None) [(1, [124; 98])]
    (ViewCache.mk (<[1 := [124; 98]]> {[0 := [97]; 1 := [120]]}) None)) as (_ & Hi & _);
    [by vm_compute|exact Hi].
Defined.

(** The line with the cursor is rendered the same way in full and incrementally. *)
Theorem cursor_line_agrees line col :
  render_cursor_line line col = render_line_with_cursor line col ++ [10].
Proof.
  unfold render_cursor_line, render_line_with_cursor, saturating_sub.
  destruct (N.leb_spec col (len line)), (N.ltb_spec col (len line)), (N.eqb_spec col (len line)); try lia;
    rewrite <- ?app_assoc; simpl; try done.
  subst col. unfold len. rewrite Nat2N.id, firstn_all, drop_all. done.
Qed.

(** A frame with fewer lines leaves the lines below it: nothing is sent about a line that
    is no longer there, and the cache keeps it. *)
Theorem removed_lines_are_never_cleared cursor lines c us c' i text :
  update_lines cursor 0 lines c = (us, c') → len lines ≤ i → ViewCache.lines c !! i = Some text →
  ViewCache.lines c' !! i = Some text ∧ ∀ u, u ∈ us → u.1 ≠ i.
Proof.
  intros E Hi Hc. destruct (update_lines_spec _ _ _ _ _ _ E) as (_ & _ & Hlk). split.
  - rewrite Hlk. destruct (N.ltb_spec i (0 + len lines)); [lia|]. by rewrite andb_false_r.
  - assert (∀ l k d vs d', update_lines cursor k l d = (vs, d') → ∀ u, u ∈ vs → u.1 < k + len l) as Hall.
    { induction l as [|line l IH]; intros k d vs d'; simpl; unfold len in *; cbn [length].
      - intros [= <- <-] u Hu. by apply elem_of_nil in Hu.
      - case_bool_decide.
        + intros E1 u Hu. specialize (IH _ _ _ _ E1 u Hu). lia.
        + destruct (update_lines cursor (k + 1) l (ViewCache.set_line k (rendered cursor k line) d)) as [vs1 d1] eqn:E1.
          intros [= <- <-] u [->|Hu]%elem_of_cons.
          * simpl. lia.
          * specialize (IH _ _ _ _ E1 u Hu). lia. }
    intros u Hu. specialize (Hall _ _ _ _ _ E u Hu). lia.
Qed.

Lemma removed_lines_are_never_cleared_witness :
  ViewCache.lines (ViewCache.mk {[0 := [97]; 1 := [98]]} None) !! 1 = Some [98] ∧
  ∀ u, u ∈ ([] : list (N * Str.t)) → u.1 ≠ 1.
Proof.
  apply (removed_lines_are_never_cleared None [[97]] (ViewCache.mk {[0 := [97]; 1 := [98]]} None) []
    (ViewCache.mk {[0 := [97]; 1 := [98]]} None) 1 [98]); by vm_compute.
Defined.
End TextRenderSpec.
