(* ===== verification/Text.v ===== *)
(** * UTF-8 text

    What the Rust standard library promises of [str] beyond characters: its bytes, decoding,
    and the order of strings.  Decoding gives back exactly the characters that were encoded,
    so texts with equal bytes are equal. *)

From S2P Require Import Prelude Debug Editor.
Open Scope string_scope.
Open Scope list_scope.
Open Scope N_scope.
#[local] Ltac Zify.zify_post_hook ::= Z.to_euclidean_division_equations.

(** ** Bytes and text *)

Module Utf8.
Definition continuation (b : N) : bool := (0x80 <=? b) && (b <=? 0xBF).
(** [core::str::from_utf8]: the characters, or [None] when the bytes are not UTF-8. *)
Fixpoint from_utf8 (bytes : list N) : option Str.t :=
  match bytes with
  | [] => Some []
  | b0 :: r =>
      if b0 <? 0x80 then cons b0 <$> from_utf8 r
      else if (0xC2 <=? b0) && (b0 <=? 0xDF) then
        match r with
        | b1 :: r =>
            if continuation b1 then cons ((b0 - 0xC0) * 64 + (b1 - 0x80)) <$> from_utf8 r else None
        | [] => None
        end
      else if (0xE0 <=? b0) && (b0 <=? 0xEF) then
        match r with
        | b1 :: b2 :: r =>
            let c := (b0 - 0xE0) * 4096 + (b1 - 0x80) * 64 + (b2 - 0x80) in
            if continuation b1 && continuation b2 && (0x800 <=? c)
               && negb ((0xD800 <=? c) && (c <=? 0xDFFF))
            then cons c <$> from_utf8 r else None
        | _ => None
        end
      else if (0xF0 <=? b0) && (b0 <=? 0xF4) then
        match r with
        | b1 :: b2 :: b3 :: r =>
            let c := (b0 - 0xF0) * 262144 + (b1 - 0x80) * 4096 + (b2 - 0x80) * 64 + (b3 - 0x80) in
            if continuation b1 && continuation b2 && continuation b3 && (0x10000 <=? c)
               && (c <=? 0x10FFFF)
            then cons c <$> from_utf8 r else None
        | _ => None
        end
      else None
  end.
(** The bytes of an ASCII literal or of formatted ASCII text. *)
Definition bytes (s : string) : list N := Ascii.N_of_ascii <$> String.list_ascii_of_string s.
(** [{:x}] of a [u64]. *)
Fixpoint hex_from (fuel : nat) (n : N) (acc : string) : string :=
  match fuel with
  | O => acc
  | S fuel =>
      let acc := Debug.hex_digit (n mod 16) +:+ acc in
      if n / 16 =? 0 then acc else hex_from fuel (n / 16) acc
  end.
Definition hex (n : N) : string := hex_from 16 n "".
(** [str::as_bytes]. *)
Definition encode (c : N) : list N :=
  if c <? 0x80 then [c]
  else if c <? 0x800 then [0xC0 + c / 64; 0x80 + c mod 64]
  else if c <? 0x10000 then [0xE0 + c / 4096; 0x80 + (c / 64) mod 64; 0x80 + c mod 64]
  else [0xF0 + c / 262144; 0x80 + (c / 4096) mod 64; 0x80 + (c / 64) mod 64; 0x80 + c mod 64].
Definition as_bytes (s : Str.t) : list N := s ≫= encode.
(** Unicode scalar values, the values of [char]. *)
Definition scalar (c : N) : Prop := c < 0xD800 ∨ (0xE000 ≤ c ∧ c ≤ 0x10FFFF).
#[global] Instance scalar_dec c : Decision (scalar c).
Proof. unfold scalar. apply _. Defined.
(** The order of strings, which is the order of their characters. *)
Fixpoint leb (s t : Str.t) : bool :=
  match s, t with
  | [], _ => true
  | _ :: _, [] => false
  | c :: s, d :: t => (c <? d) || (c =? d) && leb s t
  end.

Lemma ltb_false a b : b ≤ a → (a <? b) = false.
Proof. apply N.ltb_ge. Qed.
Lemma leb_true a b : a ≤ b → (a <=? b) = true.
Proof. apply N.leb_le. Qed.
Lemma in_range_true a x b : a ≤ x ∧ x ≤ b → (a <=? x) && (x <=? b) = true.
Proof. intros []. by rewrite !leb_true. Qed.
Lemma in_range_false a x b : x < a ∨ b < x → (a <=? x) && (x <=? b) = false.
Proof. intros. apply andb_false_iff. rewrite !N.leb_gt. lia. Qed.
Lemma continuation_mod n : continuation (0x80 + n mod 64) = true.
Proof. apply in_range_true. lia. Qed.

Lemma from_utf8_encode c rest : scalar c → from_utf8 (encode c ++ rest) = cons c <$> from_utf8 rest.
Proof.
  intros Hc. unfold encode, scalar in *.
  destruct (N.ltb_spec c 0x80) as [H1|H1].
  { cbn [app from_utf8]. by rewrite (proj2 (N.ltb_lt c 0x80)) by lia. }
  destruct (N.ltb_spec c 0x800) as [H2|H2]; [|destruct (N.ltb_spec c 0x10000) as [H3|H3]];
    cbn [app from_utf8]; rewrite ?continuation_mod; cbn [andb]; repeat first
      [ rewrite ltb_false by lia | rewrite in_range_true by lia | rewrite in_range_false by lia
      | rewrite leb_true by lia ]; cbn [andb negb].
  all: f_equal; f_equal; lia.
Qed.

Lemma from_utf8_as_bytes s : Forall scalar s → from_utf8 (as_bytes s) = Some s.
Proof.
  induction 1 as [|c s Hc Hs IH]; [done|]. change (as_bytes (c :: s)) with (encode c ++ as_bytes s).
  by rewrite from_utf8_encode, IH.
Qed.

Lemma as_bytes_inj s t : Forall scalar s → Forall scalar t → as_bytes s = as_bytes t → s = t.
Proof.
  intros Hs Ht E. apply from_utf8_as_bytes in Hs, Ht. rewrite E in Hs. congruence.
Qed.

Lemma as_bytes_app s t : as_bytes (s ++ t) = as_bytes s ++ as_bytes t.
Proof. apply bind_app. Qed.
(** The bytes below 128 of an encoding are the characters below 128. *)
Lemma elem_of_as_bytes_ascii s b : b < 0x80 → b ∈ as_bytes s → b ∈ s.
Proof.
  intros Hb (c & Hc & Hin)%list_elem_of_bind. revert Hc. unfold encode.
  repeat case_match; rewrite ?elem_of_cons, ?elem_of_nil; intros Hc; destruct_or?;
    try done; subst; try done; exfalso; lia.
Qed.
End Utf8.

(** [str::to_lowercase]: on ASCII text the ASCII lower case; beyond it, the tables of the
    Unicode standard, which are a parameter. *)
Definition ascii_lower (c : N) : N := if (65 <=? c) && (c <=? 90) then c + 32 else c.
Class Lowercase := {
  to_lowercase : Str.t → Str.t;
  to_lowercase_ascii : ∀ s, Forall (λ c, c < 0x80) s → to_lowercase s = ascii_lower <$> s
}.
(** One that knows no other letters. *)
Definition ascii_lowercase : Lowercase :=
  {| to_lowercase s := ascii_lower <$> s; to_lowercase_ascii s _ := eq_refl |}.
(** [str::eq_ignore_ascii_case]. *)
Definition eq_ignore_ascii_case (s t : Str.t) : bool := bool_decide (ascii_lower <$> s = ascii_lower <$> t).
(** [str::contains]. *)
Definition contains (q s : Str.t) : bool := match Str.find q s with Some _ => true | None => false end.
(** [str::split_whitespace]: the words between white space. *)
Fixpoint words_from (acc s : Str.t) : list Str.t :=
  match s with
  | [] => match acc with [] => [] | _ => [reverse acc] end
  | c :: s =>
      if Str.is_whitespace c
      then match acc with [] => words_from [] s | _ => reverse acc :: words_from [] s end
      else words_from (c :: acc) s
  end.
Definition split_whitespace (s : Str.t) : list Str.t := words_from [] s.
(** [join] with a separator. *)
Fixpoint join_with (sep : Str.t) (l : list Str.t) : Str.t :=
  match l with
  | [] => []
  | [s] => s
  | s :: l => s ++ sep ++ join_with sep l
  end.
(** [str::trim_end] and [str::strip_prefix]. *)
Definition trim_end (s : Str.t) : Str.t := reverse (Str.trim_start (reverse s)).
Definition strip_prefix (p s : Str.t) : option Str.t :=
  if Str.starts_with p s then Some (drop (length p) s) else None.
(** A word: characters without white space, at least one. *)
Definition word (s : Str.t) : Prop := s ≠ [] ∧ Forall (λ c, Str.is_whitespace c = false) s.
#[global] Instance word_dec s : Decision (word s).
Proof. apply _. Defined.

Lemma words_from_word w acc s :
  Forall (λ c, Str.is_whitespace c = false) w → words_from acc (w ++ s) = words_from (reverse w ++ acc) s.
Proof.
  intros Hw. revert acc. induction Hw as [|c w Hc Hw IH]; intros acc; [done|]. simpl.
  rewrite Hc, IH, reverse_cons. by rewrite <-app_assoc.
Qed.

(** Splitting gives back words joined by blanks. *)
Lemma split_join l : Forall word l → split_whitespace (join_with [32] l) = l.
Proof.
  unfold split_whitespace. induction 1 as [|w l [Hne Hw] Hl IH]; [done|].
  assert (∀ acc, acc ≠ [] → words_from acc [] = [reverse acc]) as Hend by (by intros []).
  assert (reverse w ≠ []) as Hr by (intros E; apply Hne, (inj reverse); by rewrite E).
  destruct l as [|w' l].
  - simpl. rewrite <-(app_nil_r w) at 1. rewrite words_from_word by done. rewrite app_nil_r.
    rewrite Hend by done. by rewrite reverse_involutive.
  - change (join_with [32] (w :: w' :: l)) with (w ++ [32] ++ join_with [32] (w' :: l)).
    rewrite words_from_word by done. rewrite app_nil_r. cbn [app words_from]. simpl (Str.is_whitespace 32).
    destruct (reverse w) as [|x r] eqn:E; [done|]. rewrite <-E, reverse_involutive. f_equal. exact IH.
Qed.

(** The words that splitting finds are words. *)
Lemma split_whitespace_words s : Forall word (split_whitespace s).
Proof.
  unfold split_whitespace. assert (Forall (λ c, Str.is_whitespace c = false) ([] : Str.t)) as H by constructor.
  revert H. generalize ([] : Str.t) as acc. induction s as [|c s IH]; intros acc Hacc; simpl.
  - destruct acc as [|x acc]; [constructor|]. constructor; [|constructor]. split.
    + intros E. apply (inj reverse (x :: acc) []) in E. done.
    + by apply Forall_reverse.
  - destruct (Str.is_whitespace c) eqn:Ec; [|apply IH; by constructor].
    destruct acc as [|x acc]; [by apply IH|]. constructor; [|by apply IH]. split.
    + intros E. apply (inj reverse (x :: acc) []) in E. done.
    + by apply Forall_reverse.
Qed.
