(* ===== verification/BareMem.v ===== *)
(** * Physical memory of the bare-metal kernel

    [kernel_bootstrap/src/main.rs]: the frame allocator built from the boot loader's memory
    map, the bump heap behind the kernel's [heap] and behind the global allocator, their
    set-up at boot, and the memory routines the compiler calls.  Arrays have the fixed
    lengths of the source; an access out of range panics. *)

From S2P Require Import Prelude.
Open Scope list_scope.
Open Scope N_scope.

(* kernel_bootstrap/src/main.rs:2876-2876 PAGE_SIZE *)
Definition PAGE_SIZE : N := 4096.

(* kernel_bootstrap/src/main.rs:4177-4182 align_up *)
Definition align_up (value align : N) : outcome N :=
  if align =? 0 then Return value
  else
    s ← add_u64 value align;
    s ← sub_u64 s 1;
    mul_u64 (s / align) align.
(* kernel_bootstrap/src/main.rs:4184-4189 align_down *)
Definition align_down (value align : N) : N :=
  if align =? 0 then value else value / align * align.
(* kernel_bootstrap/src/main.rs:4191-4196 align_up_usize *)
Definition align_up_usize (value align : N) : outcome N :=
  if align =? 0 then Return value
  else
    s ← add_u64 value align;
    s ← sub_u64 s 1;
    mul_u64 (s / align) align.

(** ** Frames *)

Module Range.
(* kernel_bootstrap/src/main.rs:3912-3916 Range *)
Record t := mk { start : N; end_ : N }.
#[global] Instance eq_dec : EqDecision t.
Proof. solve_decision. Defined.
End Range.

Module FrameAllocator.
(* kernel_bootstrap/src/main.rs:3918-3927 FrameAllocator *)
Record t := mk {
  ranges : list Range.t;
  len : N;
  current : N;
  next : N;
  reclaimed : list N;
  reclaimed_len : N;
  reserved : list Range.t;
  reserved_len : N
}.
#[global] Instance rebuild_t : Rebuild t := λ a,
  mk (ranges a) (len a) (current a) (next a) (reclaimed a) (reclaimed_len a) (reserved a)
    (reserved_len a).
(* kernel_bootstrap/src/main.rs:3930-3941 FrameAllocator::new *)
Definition new : t :=
  mk (replicate 32 (Range.mk 0 0)) 0 0 0 (replicate 64 0) 0 (replicate 32 (Range.mk 0 0)) 0.
(* kernel_bootstrap/src/main.rs:3943-3951 FrameAllocator::add_range *)
Definition add_range (base length : N) (a : t) : outcome t :=
  start ← align_up base PAGE_SIZE;
  let end_ := align_down (saturating_add base length) PAGE_SIZE in
  if (end_ <=? start) || (Prelude.len (ranges a) <=? len a) then Return a
  else
    rs ← slice_set (ranges a) (len a) (Range.mk start end_);
    Return (a <| ranges := rs |> <| len ::= N.succ |>).
(* kernel_bootstrap/src/main.rs:3953-3961 FrameAllocator::add_reserved_range *)
Definition add_reserved_range (base length : N) (a : t) : outcome t :=
  start ← align_up base PAGE_SIZE;
  let end_ := align_down (saturating_add base length) PAGE_SIZE in
  if (end_ <=? start) || (Prelude.len (reserved a) <=? reserved_len a) then Return a
  else
    rs ← slice_set (reserved a) (reserved_len a) (Range.mk start end_);
    Return (a <| reserved := rs |> <| reserved_len ::= N.succ |>).
(* kernel_bootstrap/src/main.rs:3963-3965 FrameAllocator::reserved_range_count *)
Definition reserved_range_count (a : t) : N := reserved_len a.
(* kernel_bootstrap/src/main.rs:3967-3974 FrameAllocator::reset_cursor *)
Definition reset_cursor (a : t) : outcome t :=
  let a := a <| current := 0 |> in
  if 0 <? len a
  then r ← slice_get (ranges a) 0; Return (a <| next := Range.start r |>)
  else Return (a <| next := 0 |>).
(* kernel_bootstrap/src/main.rs:3976-3978 FrameAllocator::range_count *)
Definition range_count (a : t) : N := len a.
(* kernel_bootstrap/src/main.rs:3980-3989 FrameAllocator::total_frames *)
Definition total_frames (a : t) : outcome N :=
  fold_outcome (λ total i,
    range ← slice_get (ranges a) (N.of_nat i);
    d ← sub_u64 (Range.end_ range) (Range.start range);
    Return (saturating_add total (d / PAGE_SIZE))) (seq 0 (N.to_nat (len a))) 0.
(* kernel_bootstrap/src/main.rs:3991-3993 FrameAllocator::next_frame *)
Definition next_frame (a : t) : N := next a.
(* kernel_bootstrap/src/main.rs:3995-3997 FrameAllocator::reclaimed_count *)
Definition reclaimed_count (a : t) : N := reclaimed_len a.

(** The loop over [i] of the source; [n] counts what is left of it. *)
Fixpoint overlap_from (rs : list Range.t) (start end_ i : N) (n : nat) : outcome (option Range.t) :=
  match n with
  | O => Return None
  | S n =>
      range ← slice_get rs i;
      if (start <? Range.end_ range) && (Range.start range <? end_) then Return (Some range)
      else overlap_from rs start end_ (i + 1) n
  end.
(* kernel_bootstrap/src/main.rs:4049-4059 FrameAllocator::first_reserved_overlap *)
Definition first_reserved_overlap (start end_ : N) (a : t) : outcome (option Range.t) :=
  overlap_from (reserved a) start end_ 0 (N.to_nat (reserved_len a)).

(** The inner [loop]: the first place at or after [start] where the block fits. *)
(* kernel_bootstrap/src/main.rs:4028-4039 FrameAllocator::allocate_contiguous (inner loop) *)
Fixpoint place (fuel : nat) (bytes start : N) (range : Range.t) (a : t) : outcome (option N) :=
  match fuel with
  | O => Diverge
  | S fuel =>
      let end_ := saturating_add start bytes in
      if Range.end_ range <? end_ then Return None
      else
        o ← first_reserved_overlap start end_ a;
        match o with
        | Some reserved => place fuel bytes (Range.end_ reserved) range a
        | None => Return (Some start)
        end
  end.
(* kernel_bootstrap/src/main.rs:4020-4046 FrameAllocator::allocate_contiguous (outer loop) *)
Fixpoint search (fuel : nat) (bytes : N) (a : t) : outcome (option N * t) :=
  if current a <? len a
  then
    match fuel with
    | O => Diverge
    | S fuel =>
        range ← slice_get (ranges a) (current a);
        let start := if next a <? Range.start range then Range.start range else next a in
        o ← place (S (N.to_nat (reserved_len a))) bytes start range a;
        match o with
        | Some start => Return (Some start, a <| next := saturating_add start bytes |>)
        | None =>
            let a := a <| current ::= N.succ |> in
            a ← (if current a <? len a
                 then r ← slice_get (ranges a) (current a); Return (a <| next := Range.start r |>)
                 else Return a);
            search fuel bytes a
        end
    end
  else Return (None, a).
(* kernel_bootstrap/src/main.rs:4015-4047 FrameAllocator::allocate_contiguous *)
Definition allocate_contiguous (pages : N) (a : t) : outcome (option N * t) :=
  if pages =? 0 then Return (None, a)
  else search (S (N.to_nat (len a))) (saturating_mul pages PAGE_SIZE) a.
(* kernel_bootstrap/src/main.rs:3999-4005 FrameAllocator::allocate_frame *)
Definition allocate_frame (a : t) : outcome (option N * t) :=
  if 0 <? reclaimed_len a
  then
    let a := a <| reclaimed_len ::= N.pred |> in
    f ← slice_get (reclaimed a) (reclaimed_len a);
    Return (Some f, a)
  else allocate_contiguous 1 a.
(* kernel_bootstrap/src/main.rs:4007-4013 FrameAllocator::free_frame *)
Definition free_frame (frame : N) (a : t) : outcome t :=
  if Prelude.len (reclaimed a) <=? reclaimed_len a then Return a
  else
    l ← slice_set (reclaimed a) (reclaimed_len a) frame;
    Return (a <| reclaimed := l |> <| reclaimed_len ::= N.succ |>).
End FrameAllocator.

(** ** The bump heap *)

Module AllocationLifetime.
(* kernel_bootstrap/src/main.rs:4062-4066 AllocationLifetime *)
Inductive t := KernelStatic | KernelTransient.
#[global] Instance eq_dec : EqDecision t.
Proof. solve_decision. Defined.
(** The derived [Debug] text. *)
Definition debug (l : t) : string :=
  match l with KernelStatic => "KernelStatic" | KernelTransient => "KernelTransient" end.
End AllocationLifetime.

Module AllocationRecord.
(* kernel_bootstrap/src/main.rs:4068-4073 AllocationRecord *)
Record t := mk { start : N; size : N; lifetime : AllocationLifetime.t }.
End AllocationRecord.

Module AllocationStats.
(* kernel_bootstrap/src/main.rs:4075-4081 AllocationStats *)
Record t := mk { used : N; free : N; total : N; allocations : N }.
End AllocationStats.

Module BumpHeap.
(* kernel_bootstrap/src/main.rs:4094-4099 BumpHeap *)
Record t := mk { start : N; end_ : N; next : N; allocations : N }.
#[global] Instance rebuild_t : Rebuild t := λ h, mk (start h) (end_ h) (next h) (allocations h).
(* kernel_bootstrap/src/main.rs:4106-4113 BumpHeap::new *)
Definition new (start size : N) : t := mk start (saturating_add start size) start 0.
(* kernel_bootstrap/src/main.rs:4117-4139 BumpHeap::alloc (KernelAllocator) *)
Definition alloc (size align : N) (lifetime : AllocationLifetime.t) (h : t)
    : outcome (option AllocationRecord.t * t) :=
  aligned ← align_up_usize (next h) align;
  let e := saturating_add aligned size in
  if end_ h <? e then Return (None, h)
  else
    n ← add_u64 (allocations h) 1;
    Return (Some (AllocationRecord.mk aligned size lifetime), h <| next := e |> <| allocations := n |>).
(* kernel_bootstrap/src/main.rs:4141-4153 BumpHeap::stats *)
Definition stats (h : t) : AllocationStats.t :=
  AllocationStats.mk (saturating_sub (next h) (start h)) (saturating_sub (end_ h) (next h))
    (saturating_sub (end_ h) (start h)) (allocations h).
(** The null pointer is [None]. *)
(* kernel_bootstrap/src/main.rs:4158-4170 BumpHeap::alloc (GlobalAlloc) *)
Definition global_alloc (size align : N) (h : t) : outcome (option N * t) :=
  aligned ← align_up_usize (next h) align;
  let e := saturating_add aligned size in
  if end_ h <? e then Return (None, h)
  else
    n ← add_u64 (allocations h) 1;
    Return (Some aligned, h <| next := e |> <| allocations := n |>).
(* kernel_bootstrap/src/main.rs:4172-4174 BumpHeap::dealloc (GlobalAlloc) *)
Definition dealloc (ptr : N) (h : t) : t := h.
End BumpHeap.

(** ** Set-up at boot *)

(** An entry of the boot loader's memory map. *)
Module EntryType.
Inductive t := USABLE | BOOTLOADER_RECLAIMABLE | EXECUTABLE_AND_MODULES | Other.
End EntryType.
Module MemoryEntry.
Record t := mk { base : N; length : N; entry_type : EntryType.t }.
End MemoryEntry.

(* kernel_bootstrap/src/main.rs:2767-2776 init_memory (one entry) *)
Definition add_entry (a : FrameAllocator.t) (e : MemoryEntry.t) : outcome FrameAllocator.t :=
  match MemoryEntry.entry_type e with
  | EntryType.USABLE => FrameAllocator.add_range (MemoryEntry.base e) (MemoryEntry.length e) a
  | EntryType.BOOTLOADER_RECLAIMABLE | EntryType.EXECUTABLE_AND_MODULES =>
      FrameAllocator.add_reserved_range (MemoryEntry.base e) (MemoryEntry.length e) a
  | EntryType.Other => Return a
  end.
(* kernel_bootstrap/src/main.rs:2766-2777 init_memory (the allocator) *)
Definition init_allocator (map : list MemoryEntry.t) : outcome FrameAllocator.t :=
  a ← fold_outcome add_entry map FrameAllocator.new;
  FrameAllocator.reset_cursor a.

(* kernel_bootstrap/src/main.rs:2803-2803 HEAP_PAGES *)
Definition HEAP_PAGES : N := 2048.
(** The heap the kernel keeps, and what [GLOBAL_HEAP] becomes; [None] when it stays as it was. *)
(* kernel_bootstrap/src/main.rs:2798-2827 init_heap *)
Definition init_heap (hhdm_offset : N) (a : FrameAllocator.t)
    : outcome (option (BumpHeap.t * BumpHeap.t) * FrameAllocator.t) :=
  '(o, a) ← FrameAllocator.allocate_contiguous HEAP_PAGES a;
  match o with
  | None => Return (None, a)
  | Some phys_base =>
      virt_base ← add_u64 hhdm_offset phys_base;
      let size := HEAP_PAGES * PAGE_SIZE in
      Return (Some (BumpHeap.new virt_base size,
                    BumpHeap.mk virt_base (saturating_add virt_base size) virt_base 0), a)
  end.
(** [GLOBAL_HEAP] starts as [BumpHeap::new(0, 0)]; the lines to the serial port are left out. *)
(* kernel_bootstrap/src/main.rs:2756-2795 init_memory *)
Definition init_memory (memory_map : option (list MemoryEntry.t)) (hhdm_offset : option N)
    : outcome (option FrameAllocator.t * option BumpHeap.t * BumpHeap.t) :=
  match memory_map with
  | None => Return (None, None, BumpHeap.new 0 0)
  | Some map =>
      a ← init_allocator map;
      _ ← FrameAllocator.total_frames a;
      match hhdm_offset with
      | None => Return (Some a, None, BumpHeap.new 0 0)
      | Some offset =>
          '(o, a) ← init_heap offset a;
          match o with
          | Some (heap, global_heap) => Return (Some a, Some heap, global_heap)
          | None => Return (Some a, None, BumpHeap.new 0 0)
          end
      end
  end.

(** ** Memory routines

    Memory is a function from addresses to bytes. *)
Definition memory := N → N.
Definition store (addr v : N) (m : memory) : memory := λ x, if x =? addr then v else m x.

(** [for i in 0..n] and [for i in (0..n).rev()] over memory. *)
Definition forward (f : nat → memory → memory) (n : nat) (m : memory) : memory :=
  foldl (λ m i, f i m) m (seq 0 n).
Definition backward (f : nat → memory → memory) (n : nat) (m : memory) : memory :=
  foldl (λ m i, f i m) m (reverse (seq 0 n)).

(** [c as u8] keeps the low byte of the two's complement. *)
(* kernel_bootstrap/src/main.rs:4405-4413 memset *)
Definition memset (dest : N) (c : Z) (n : nat) (m : memory) : memory :=
  let c := Z.to_N (c mod 256) in
  forward (λ i m, store (dest + N.of_nat i) c m) n m.
(** One iteration of a copying loop. *)
Definition copy_byte (dest src : N) (i : nat) (m : memory) : memory :=
  store (dest + N.of_nat i) (m (src + N.of_nat i)) m.
(* kernel_bootstrap/src/main.rs:4417-4424 memcpy *)
Definition memcpy (dest src : N) (n : nat) (m : memory) : memory :=
  forward (copy_byte dest src) n m.
(* kernel_bootstrap/src/main.rs:4428-4443 memmove *)
Definition memmove (dest src : N) (n : nat) (m : memory) : memory :=
  if dest <? src then forward (copy_byte dest src) n m
  else backward (copy_byte dest src) n m.
(** The loop of [memcmp] from index [i]. *)
Fixpoint memcmp_from (s1 s2 : N) (i : nat) (n : nat) (m : memory) : Z :=
  match n with
  | O => 0
  | S n =>
      let a := m (s1 + N.of_nat i) in
      let b := m (s2 + N.of_nat i) in
      if a =? b then memcmp_from s1 s2 (S i) n m else (Z.of_N a - Z.of_N b)%Z
  end.
(* kernel_bootstrap/src/main.rs:4447-4458 memcmp *)
Definition memcmp (s1 s2 : N) (n : nat) (m : memory) : Z := memcmp_from s1 s2 0 n m.
