(* ===== verification/BareMemProps.v ===== *)
(** * Correctness of the bare-metal memory code

    [FrameSpec]: the frame allocator hands out frames of usable memory that are outside
    reserved memory, and never one that is in use.  [HeapSpec]: the bump heap.
    [MemorySpec]: the memory routines. *)

From S2P Require Import Prelude BareMem.
Open Scope list_scope.
Open Scope N_scope.

#[local] Opaque N.div N.modulo.

(** ** Alignment *)

Definition page (n : N) : Prop := n mod PAGE_SIZE = 0.

Lemma align_up_spec v al : al ≠ 0 → v + al ≤ u64_max →
  ∃ s, align_up v al = Return s ∧ v ≤ s < v + al ∧ s mod al = 0.
Proof.
  intros Hal Hmax. unfold align_up. destruct (N.eqb_spec al 0); [done|].
  rewrite (proj2 (add_u64_Return v al (v + al))) by lia. simpl.
  unfold sub_u64, checked_sub. destruct (N.leb_spec 1 (v + al)); [|lia]. simpl.
  pose proof (N.div_mod (v + al - 1) al Hal) as Hd. pose proof (N.mod_lt (v + al - 1) al Hal) as Hm.
  revert Hd Hm. generalize ((v + al - 1) / al), ((v + al - 1) mod al). intros q k Hd Hm.
  exists (q * al). split_and!.
  - apply mul_u64_Return. split; [done|]. nia.
  - nia.
  - nia.
  - apply N.Div0.mod_mul.
Qed.
Lemma align_up_Return v al s : al ≠ 0 → align_up v al = Return s → v ≤ s < v + al ∧ s mod al = 0.
Proof.
  intros Hal E. destruct (decide (v + al ≤ u64_max)) as [Hmax|Hmax].
  - destruct (align_up_spec v al Hal Hmax) as (s' & E' & ?). rewrite E in E'. by injection E' as <-.
  - unfold align_up, add_u64, checked_add in E. destruct (N.eqb_spec al 0); [done|].
    by destruct (N.leb_spec (v + al) u64_max).
Qed.
Lemma align_down_spec v al : al ≠ 0 → align_down v al ≤ v ∧ align_down v al mod al = 0.
Proof.
  intros Hal. unfold align_down. destruct (N.eqb_spec al 0); [done|]. split.
  - rewrite N.mul_comm. by apply N.Div0.mul_div_le.
  - apply N.Div0.mod_mul.
Qed.
Lemma align_usize v al : align_up_usize v al = align_up v al.
Proof. done. Qed.
Lemma page_pos : PAGE_SIZE ≠ 0.
Proof. done. Qed.
#[export] Hint Resolve page_pos : pandagen.

Lemma page_add a b : page a → page b → page (a + b).
Proof. unfold page. intros Ha Hb. rewrite N.Div0.add_mod, Ha, Hb. done. Qed.
Lemma page_frames n : page (n * PAGE_SIZE).
Proof. apply N.Div0.mod_mul. Qed.
Lemma page_bound n : page n → n ≤ u64_max → n + 4095 ≤ u64_max.
Proof.
  intros Hp Hn. unfold page in Hp. pose proof (N.div_mod n PAGE_SIZE page_pos) as Hd.
  unfold u64_max, PAGE_SIZE in *. lia.
Qed.
(** Two different pages are a page apart. *)
Lemma page_distinct a b : page a → page b → a < b → a + PAGE_SIZE ≤ b.
Proof.
  intros Ha Hb Hlt. unfold page in *. pose proof (N.div_mod a PAGE_SIZE page_pos).
  pose proof (N.div_mod b PAGE_SIZE page_pos). unfold PAGE_SIZE in *. lia.
Qed.

(** ** The frame allocator *)

Module FrameSpec.
Import FrameAllocator.
Notation allocator := FrameAllocator.t.

Definition range_ok (r : Range.t) : Prop :=
  page (Range.start r) ∧ page (Range.end_ r) ∧ Range.start r < Range.end_ r ∧
  Range.end_ r ≤ u64_max.
(** The entries in use of the two tables and of the stack of frames given back. *)
Definition used_ranges (a : allocator) : list Range.t := take (N.to_nat (len a)) (ranges a).
Definition used_reserved (a : allocator) : list Range.t := take (N.to_nat (reserved_len a)) (reserved a).
Definition free_list (a : allocator) : list N := take (N.to_nat (reclaimed_len a)) (reclaimed a).

Record wf (a : allocator) : Prop := {
  wf_ranges : length (ranges a) = 32%nat ∧ len a ≤ 32;
  wf_reclaimed : length (reclaimed a) = 64%nat ∧ reclaimed_len a ≤ 64;
  wf_reserved : length (reserved a) = 32%nat ∧ reserved_len a ≤ 32;
  wf_usable : Forall range_ok (used_ranges a);
  wf_kept : Forall range_ok (used_reserved a);
  wf_next : page (next a) ∧ current a ≤ len a
}.

Definition overlaps (s e : N) (r : Range.t) : Prop := s < Range.end_ r ∧ Range.start r < e.

(** *** Looking for a place *)

Lemma used_lookup {A} (l : list A) n i : i < n → n ≤ Prelude.len l →
  ∃ x, slice_get l i = Return x ∧ take (N.to_nat n) l !! N.to_nat i = Some x.
Proof.
  intros Hi Hn. unfold Prelude.len in Hn.
  destruct (lookup_lt_is_Some_2 l (N.to_nat i)) as [x Hx]; [lia|]. exists x. split.
  - by apply slice_get_Return.
  - by rewrite lookup_take_lt by lia.
Qed.

Lemma take_push {A} (l : list A) n x : n < Prelude.len l →
  take (N.to_nat (N.succ n)) (<[N.to_nat n := x]> l) = take (N.to_nat n) l ++ [x].
Proof.
  intros Hn. unfold Prelude.len in Hn. rewrite N2Nat.inj_succ, (take_S_r _ _ x).
  - f_equal. apply take_insert_ge. lia.
  - apply list_lookup_insert_eq. lia.
Qed.

Lemma overlap_from_spec rs s e : ∀ n i, i + N.of_nat n ≤ Prelude.len rs →
  ∃ o, overlap_from rs s e i n = Return o ∧
    match o with
    | Some r => r ∈ take n (drop (N.to_nat i) rs) ∧ overlaps s e r
    | None => ∀ r, r ∈ take n (drop (N.to_nat i) rs) → ¬ overlaps s e r
    end.
Proof.
  induction n as [|n IH]; intros i Hi; simpl.
  { exists None. split; [done|]. intros r Hr. by apply elem_of_nil in Hr. }
  unfold Prelude.len in Hi. destruct (lookup_lt_is_Some_2 rs (N.to_nat i)) as [x Hx]; [lia|].
  rewrite (proj2 (slice_get_Return rs i x) Hx). simpl. rewrite (drop_S _ _ _ Hx). simpl.
  destruct (N.ltb_spec s (Range.end_ x)), (N.ltb_spec (Range.start x) e); simpl.
  { exists (Some x). split; [done|]. split; [left|by split]. }
  all: destruct (IH (i + 1)) as (o & E & Ho); [unfold Prelude.len; lia|];
    exists o; split; [done|]; replace (N.to_nat (i + 1)) with (S (N.to_nat i)) in Ho by lia;
    destruct o as [r|].
  1,3,5: by destruct Ho; split; [right|].
  all: intros r [->|Hr]%elem_of_cons; [unfold overlaps; lia|by apply Ho].
Qed.

Lemma first_reserved_overlap_spec a s e : wf a →
  ∃ o, first_reserved_overlap s e a = Return o ∧
    match o with
    | Some r => r ∈ used_reserved a ∧ overlaps s e r
    | None => ∀ r, r ∈ used_reserved a → ¬ overlaps s e r
    end.
Proof.
  intros Hwf. destruct (wf_reserved a Hwf) as [Hl Hn].
  destruct (overlap_from_spec (reserved a) s e (N.to_nat (reserved_len a)) 0) as (o & E & Ho).
  { unfold Prelude.len. lia. }
  exists o. split; [done|]. by rewrite drop_0 in Ho.
Qed.

(** The reserved ranges that end after a place: what the inner loop can still jump over. *)
Definition ahead (s : N) (l : list Range.t) : list Range.t := filter (λ r, s < Range.end_ r) l.

Lemma ahead_shrinks s r l : r ∈ l → s < Range.end_ r → (length (ahead (Range.end_ r) l) < length (ahead s l))%nat.
Proof.
  assert (∀ k, (length (ahead (Range.end_ r) k) ≤ length (ahead s k))%nat ∨ Range.end_ r ≤ s) as Hle.
  { induction k as [|x k IH]; [by left|]. destruct IH as [IH|]; [|by right].
    destruct (decide (s < Range.end_ r)); [left|right; lia]. unfold ahead in *. rewrite !filter_cons.
    case_decide; case_decide; simpl; lia. }
  intros Hin Hs. induction l as [|x l IH]; [by apply elem_of_nil in Hin|].
  unfold ahead in *. rewrite !filter_cons. apply elem_of_cons in Hin as [<-|Hin].
  - rewrite decide_False by lia. rewrite decide_True by done. simpl.
    destruct (Hle l); simpl; lia.
  - specialize (IH Hin). case_decide; case_decide; simpl; lia.
Qed.

(** The inner loop ends, and it ends with a place that is free of reserved memory. *)
Lemma place_spec a range bytes : wf a → range_ok range → ∀ fuel s,
  page s → (length (ahead s (used_reserved a)) < fuel)%nat →
  ∃ o, place fuel bytes s range a = Return o ∧
    ∀ p, o = Some p → page p ∧ s ≤ p ∧ p + bytes ≤ Range.end_ range ∧
      (∀ r, r ∈ used_reserved a → ¬ overlaps p (p + bytes) r).
Proof.
  intros Hwf Hr. induction fuel as [|fuel IH]; intros s Hs Hf; [lia|]. simpl.
  destruct (N.ltb_spec (Range.end_ range) (saturating_add s bytes)) as [|Hend].
  { exists None. split; [done|]. by intros p ?. }
  assert (saturating_add s bytes = s + bytes) as Esum.
  { destruct Hr as (_ & Hpe & _ & Hmax). pose proof (page_bound _ Hpe Hmax).
    unfold saturating_add in *. lia. }
  destruct (first_reserved_overlap_spec a s (saturating_add s bytes) Hwf) as (o & -> & Ho). simpl.
  rewrite Esum in *. destruct o as [r|].
  - destruct Ho as [Hin [Ho1 Ho2]]. pose proof (proj1 (Forall_forall _ _) (wf_kept a Hwf) r Hin) as (? & Hpe & ? & ?).
    destruct (IH (Range.end_ r) Hpe) as (o & E & Hp).
    { pose proof (ahead_shrinks s r _ Hin Ho1). lia. }
    exists o. split; [done|]. intros p Ep. destruct (Hp p Ep) as (? & ? & ? & ?). split_and!; try done; lia.
  - exists (Some s). split; [done|]. intros p [= <-]. split_and!; try done; lia.
Qed.

(** *** The cursor

    A frame is behind the cursor when it was handed out, or skipped, before. *)
Definition behind (a : allocator) (f : N) : Prop :=
  ∃ j r, used_ranges a !! N.to_nat j = Some r ∧ Range.start r ≤ f ∧ f + PAGE_SIZE ≤ Range.end_ r ∧
    (j < current a ∨ j = current a ∧ f + PAGE_SIZE ≤ next a).
Definition ranges_disjoint (l : list Range.t) : Prop :=
  ∀ i j r1 r2, l !! i = Some r1 → l !! j = Some r2 → i ≠ j →
    Range.end_ r1 ≤ Range.start r2 ∨ Range.end_ r2 ≤ Range.start r1.
(** The frames of a block. *)
Definition frames (s pages : N) : list N :=
  (λ i, s + N.of_nat i * PAGE_SIZE) <$> seq 0 (N.to_nat pages).

Lemma elem_of_frames s pages f : f ∈ frames s pages ↔ ∃ i, i < pages ∧ f = s + i * PAGE_SIZE.
Proof.
  unfold frames. rewrite list_elem_of_fmap. split.
  - intros (i & -> & Hi%elem_of_seq). exists (N.of_nat i). split; [lia|done].
  - intros (i & Hi & ->). exists (N.to_nat i). rewrite N2Nat.id. split; [done|]. apply elem_of_seq. lia.
Qed.
Lemma frames_NoDup s pages : NoDup (frames s pages).
Proof.
  unfold frames. apply NoDup_fmap_2; [|apply NoDup_seq]. intros i j E. unfold PAGE_SIZE in E. lia.
Qed.

(** Same tables, cursor not moved back. *)
Definition advances (a a' : allocator) : Prop :=
  ranges a' = ranges a ∧ len a' = len a ∧ reserved a' = reserved a ∧ reserved_len a' = reserved_len a ∧
  reclaimed a' = reclaimed a ∧ reclaimed_len a' = reclaimed_len a ∧ ∀ f, behind a f → behind a' f.
Lemma advances_trans a b c : advances a b → advances b c → advances a c.
Proof.
  intros (?&?&?&?&?&?&Hab) (?&?&?&?&?&?&Hbc). split_and!; try congruence. intros f Hf. by apply Hbc, Hab.
Qed.

(** What a block [s] of [pages] pages handed out by [a] is. *)
Record granted (a a' : allocator) (pages s : N) : Prop := {
  granted_page : page s;
  granted_behind : ∀ f, f ∈ frames s pages → behind a' f;
  granted_new : ∀ f, f ∈ frames s pages → ¬ behind a f;
  granted_free : ∀ f r, f ∈ frames s pages → r ∈ used_reserved a → ¬ overlaps f (f + PAGE_SIZE) r
}.

Lemma frames_within s pages f : f ∈ frames s pages → s ≤ f ∧ f + PAGE_SIZE ≤ s + pages * PAGE_SIZE.
Proof. intros (i & Hi & ->)%elem_of_frames. unfold PAGE_SIZE. lia. Qed.

Lemma range_next a : wf a → current a < len a →
  ∃ r, slice_get (ranges a) (current a) = Return r ∧ used_ranges a !! N.to_nat (current a) = Some r ∧ range_ok r.
Proof.
  intros Hwf Hc. destruct (wf_ranges a Hwf). destruct (used_lookup (ranges a) (len a) (current a)) as (r & E & Hr).
  { done. } { unfold Prelude.len. lia. }
  exists r. split_and!; try done. by apply (proj1 (Forall_forall _ _) (wf_usable a Hwf)), list_elem_of_lookup_2 with (N.to_nat (current a)).
Qed.

(** The outer loop moves on to the next range. *)
Lemma skip_range a : wf a → current a < len a →
  ∃ b, (let a := a <| current ::= N.succ |> in
        if current a <? len a
        then r ← slice_get (ranges a) (current a); Return (a <| next := Range.start r |>)
        else Return a) = Return b ∧
    wf b ∧ advances a b ∧ current b = current a + 1.
Proof.
  intros Hwf Hc. assert (∀ n', page n' →
    wf (mk (ranges a) (len a) (N.succ (current a)) n' (reclaimed a) (reclaimed_len a) (reserved a) (reserved_len a)) ∧
    advances a (mk (ranges a) (len a) (N.succ (current a)) n' (reclaimed a) (reclaimed_len a) (reserved a) (reserved_len a))) as H.
  { intros n' Hn'. split.
    - destruct Hwf. split; try done. simpl. split; [done|lia].
    - split_and!; try done. intros f (j & r & ? & ? & ? & Hj). exists j, r. split_and!; try done. left. simpl. lia. }
  cbv beta zeta. unfold update_field. simpl. destruct (N.ltb_spec (N.succ (current a)) (len a)) as [Hlt|].
  - destruct (wf_ranges a Hwf). destruct (used_lookup (ranges a) (len a) (N.succ (current a))) as (r & -> & Hr).
    { done. } { unfold Prelude.len. lia. } simpl. eexists. split; [done|].
    apply and_assoc. split; [|simpl; lia]. apply H.
    apply (proj1 (Forall_forall _ _) (wf_usable a Hwf) r). by apply list_elem_of_lookup_2 with (N.to_nat (N.succ (current a))).
  - eexists. split; [done|]. apply and_assoc. split; [|simpl; lia]. apply H. by destruct (wf_next a Hwf).
Qed.

Lemma saturating_pages pages r : range_ok r → ∀ s, s + saturating_mul pages PAGE_SIZE ≤ Range.end_ r →
  saturating_mul pages PAGE_SIZE = pages * PAGE_SIZE.
Proof.
  intros (_ & Hp & _ & Hmax) s Hs. pose proof (page_bound _ Hp Hmax). unfold saturating_mul in *. lia.
Qed.

(** A block placed in the current range. *)
Lemma grant_here a r pages s : wf a → ranges_disjoint (used_ranges a) → current a < len a →
  used_ranges a !! N.to_nat (current a) = Some r → range_ok r → page s →
  Range.start r ≤ s → next a ≤ s → s + pages * PAGE_SIZE ≤ Range.end_ r →
  (∀ x, x ∈ used_reserved a → ¬ overlaps s (s + pages * PAGE_SIZE) x) →
  let a' := a <| next := s + pages * PAGE_SIZE |> in
  wf a' ∧ advances a a' ∧ granted a a' pages s.
Proof.
  intros Hwf Hdis Hc Hr Hok Hp Hs Hn He Hres. cbv zeta. unfold update_field. simpl. split_and!.
  - destruct Hwf. split; try done. simpl. split; [|lia]. apply page_add; [done|]. apply page_frames.
  - split_and!; try done. intros f (j & x & Hx & ? & ? & Hj). exists j, x. split_and!; try done. simpl. lia.
  - split.
    + done.
    + intros f Hf%frames_within. exists (current a), r. split_and!; try done; simpl; lia.
    + intros f Hf%frames_within (j & x & Hx & ? & ? & Hj). destruct Hj as [Hj|[-> Hj]]; [|unfold PAGE_SIZE in *; lia].
      destruct (Hdis (N.to_nat j) (N.to_nat (current a)) x r); try done; unfold PAGE_SIZE in *; lia.
    + intros f x Hf%frames_within Hx [Ho1 Ho2]. apply (Hres x Hx). split; lia.
Qed.

#[local] Arguments place : simpl never.

(** The search ends; what it finds is new, and what was handed out stays behind the cursor. *)
Lemma search_spec pages : ∀ fuel a, wf a → ranges_disjoint (used_ranges a) →
  (N.to_nat (len a) - N.to_nat (current a) < fuel)%nat →
  ∃ o a', search fuel (saturating_mul pages PAGE_SIZE) a = Return (o, a') ∧ wf a' ∧ advances a a' ∧
    ∀ s, o = Some s → granted a a' pages s.
Proof.
  induction fuel as [|fuel IH]; intros a Hwf Hdis Hf; [lia|]. simpl.
  destruct (N.ltb_spec (current a) (len a)) as [Hc|]; last first.
  { exists None, a. split_and!; try done. }
  destruct (range_next a Hwf Hc) as (r & -> & Hr & Hok). simpl.
  set (st := if next a <? Range.start r then Range.start r else next a).
  assert (page st ∧ Range.start r ≤ st ∧ next a ≤ st) as (Hpst & Hst1 & Hst2).
  { unfold st. destruct (wf_next a Hwf), Hok. destruct (N.ltb_spec (next a) (Range.start r)); split_and!; (done || lia). }
  destruct (place_spec a r (saturating_mul pages PAGE_SIZE) Hwf Hok
    (S (N.to_nat (reserved_len a))) st Hpst) as (o & -> & Ho).
  { pose proof (length_filter (λ x, st < Range.end_ x) (used_reserved a)).
    unfold used_reserved, ahead in *. rewrite length_take in *. lia. }
  simpl. destruct o as [s|].
  - destruct (Ho s eq_refl) as (Hp & Hs & He & Hres). exists (Some s).
    pose proof (saturating_pages pages r Hok s He) as Eb. rewrite Eb in *.
    assert (saturating_add s (pages * PAGE_SIZE) = s + pages * PAGE_SIZE) as ->.
    { destruct Hok as (_ & _ & _ & ?). unfold saturating_add. lia. }
    eexists. split; [done|]. destruct (grant_here a r pages s) as (? & ? & ?); try done; try lia.
    split_and!; try done. by intros ? [= <-].
  - destruct (skip_range a Hwf Hc) as (b & E & Hwfb & Hadv & Hcb). simpl in E. rewrite E. clear E. simpl.
    destruct (IH b) as (o & a' & E & Hwf' & Hadv' & Hg); try done.
    { unfold used_ranges. destruct Hadv as (-> & -> & _). done. }
    { destruct Hadv as (_ & -> & _). lia. }
    exists o, a'. split_and!; try done. { by eapply advances_trans. }
    intros s Es. destruct (Hg s Es) as [? ? Hnew Hfree]. split; try done.
    + intros f Hf' Hb. apply (Hnew f Hf'). by apply Hadv.
    + intros f x Hf' Hx. apply (Hfree f x Hf'). unfold used_reserved. destruct Hadv as (_ & _ & -> & -> & _). done.
Qed.

Lemma allocate_contiguous_spec pages a : wf a → ranges_disjoint (used_ranges a) →
  ∃ o a', allocate_contiguous pages a = Return (o, a') ∧ wf a' ∧ advances a a' ∧
    ∀ s, o = Some s → granted a a' pages s.
Proof.
  intros Hwf Hdis. unfold allocate_contiguous. destruct (N.eqb_spec pages 0) as [|_].
  - exists None, a. by split_and!.
  - apply search_spec; [done..|lia].
Qed.

(** *** Histories

    [live] are the frames handed out and not given back. *)
Inductive frame_step : allocator * list N → allocator * list N → Prop :=
| step_allocate a live f a' :
    allocate_frame a = Return (Some f, a') → frame_step (a, live) (a', f :: live)
| step_contiguous a live pages s a' :
    allocate_contiguous pages a = Return (Some s, a') → frame_step (a, live) (a', frames s pages ++ live)
| step_refused a live pages a' :
    allocate_contiguous pages a = Return (None, a') → frame_step (a, live) (a', live)
| step_free a live live' f a' :
    live ≡ₚ f :: live' → free_frame f a = Return a' → frame_step (a, live) (a', live').

Record inv (st : allocator * list N) : Prop := {
  inv_wf : wf st.1;
  inv_disjoint : ranges_disjoint (used_ranges st.1);
  inv_NoDup : NoDup (st.2 ++ free_list st.1);
  inv_frames : ∀ f, f ∈ st.2 ++ free_list st.1 → page f ∧ behind st.1 f ∧
    ∀ r, r ∈ used_reserved st.1 → ¬ overlaps f (f + PAGE_SIZE) r
}.

(** A block taken by the search keeps the invariant. *)
Lemma inv_grant a live a' pages s : inv (a, live) → wf a' → advances a a' → granted a a' pages s →
  inv (a', frames s pages ++ live).
Proof.
  intros [Hwf Hdis Hnd Hfr] Hwf' (Er & El & Ers & Erl & Ec & Ecl & Hb) [Hp Hbeh Hnew Hfree].
  simpl in *. assert (free_list a' = free_list a) as Ef by (unfold free_list; congruence).
  assert (used_reserved a' = used_reserved a) as Eu by (unfold used_reserved; congruence).
  split; simpl.
  - done.
  - unfold used_ranges. rewrite Er, El. done.
  - rewrite Ef, <- app_assoc. apply NoDup_app. split_and!; [apply frames_NoDup| |done].
    intros f Hf Hin. apply (Hnew f Hf). by apply Hfr.
  - rewrite Ef, Eu. intros f. rewrite <- app_assoc, elem_of_app. intros [Hf|Hf].
    + split_and!; [|by apply Hbeh|intros r; by apply Hfree].
      apply elem_of_frames in Hf as (i & _ & ->). apply page_add; [done|apply page_frames].
    + destruct (Hfr f Hf) as (? & ? & ?). split_and!; [done|by apply Hb|done].
Qed.

Lemma free_list_pop a : wf a → 0 < reclaimed_len a →
  ∃ f, slice_get (reclaimed a) (N.pred (reclaimed_len a)) = Return f ∧
    free_list a = free_list (a <| reclaimed_len ::= N.pred |>) ++ [f].
Proof.
  intros Hwf Hpos. destruct (wf_reclaimed a Hwf) as [Hl Hn].
  destruct (lookup_lt_is_Some_2 (reclaimed a) (N.to_nat (N.pred (reclaimed_len a)))) as [f Hf]; [lia|].
  exists f. split; [by apply slice_get_Return|]. unfold free_list. simpl.
  replace (N.to_nat (reclaimed_len a)) with (S (N.to_nat (N.pred (reclaimed_len a)))) by lia.
  by apply take_S_r.
Qed.

Lemma inv_allocate a live f a' : inv (a, live) → allocate_frame a = Return (Some f, a') →
  inv (a', f :: live).
Proof.
  intros Hinv. unfold allocate_frame. destruct (N.ltb_spec 0 (reclaimed_len a)) as [Hpos|].
  - destruct Hinv as [Hwf Hdis Hnd Hfr]. simpl in *.
    destruct (free_list_pop a Hwf Hpos) as (x & E & Hpop). simpl in E. rewrite E. simpl. intros [= -> <-].
    assert (f :: live ++ free_list (a <| reclaimed_len ::= N.pred |>) ≡ₚ live ++ free_list a) as Hperm.
    { rewrite Hpop. rewrite app_assoc. by rewrite (Permutation_app_comm _ [f]). }
    split; simpl.
    + destruct Hwf. split; try done. simpl. lia.
    + done.
    + by rewrite Hperm.
    + intros g Hg. apply Hfr. by rewrite <- Hperm.
  - intros E. destruct Hinv as [Hwf Hdis Hnd Hfr]. destruct (allocate_contiguous_spec 1 a Hwf Hdis) as (o & b & E' & Hwf' & Hadv & Hg).
    rewrite E in E'. injection E' as <- <-. apply (inv_grant a live a' 1 f) in Hwf'; try done.
    + unfold frames in Hwf'. simpl in Hwf'. by rewrite N.add_0_r in Hwf'.
    + by apply Hg.
Qed.

Lemma inv_free a live live' f a' : inv (a, live) → live ≡ₚ f :: live' → free_frame f a = Return a' →
  inv (a', live').
Proof.
  intros [Hwf Hdis Hnd Hfr] Hlive. simpl in *. destruct (wf_reclaimed a Hwf) as [Hl Hn]. unfold free_frame.
  destruct (N.leb_spec (Prelude.len (reclaimed a)) (reclaimed_len a)) as [|Hroom].
  - intros [= <-]. split; simpl; try done.
    + rewrite Hlive in Hnd. simpl in Hnd. by apply NoDup_cons in Hnd as [_ ?].
    + intros g Hg. apply Hfr. rewrite Hlive. by right.
  - unfold Prelude.len in Hroom. rewrite (proj2 (slice_set_Return (reclaimed a) (reclaimed_len a) f _)) by (split; [lia|done]).
    simpl. intros [= <-].
    assert (free_list (mk (ranges a) (len a) (current a) (next a) (<[N.to_nat (reclaimed_len a):=f]> (reclaimed a))
        (N.succ (reclaimed_len a)) (reserved a) (reserved_len a)) = free_list a ++ [f]) as Hpush.
    { unfold free_list. simpl. apply take_push. unfold Prelude.len. lia. }
    assert (live' ++ free_list a ++ [f] ≡ₚ live ++ free_list a) as Hperm.
    { rewrite Hlive, app_assoc. by rewrite (Permutation_app_comm _ [f]). }
    unfold update_field. simpl. split; simpl.
    + destruct Hwf. split; try done. simpl. rewrite length_insert. lia.
    + done.
    + rewrite Hpush. by rewrite Hperm.
    + intros g Hg. apply Hfr. rewrite <- Hperm. by rewrite <- Hpush.
Qed.

Lemma inv_step st st' : frame_step st st' → inv st → inv st'.
Proof.
  intros Hstep Hinv. destruct Hstep as [a live f a' E|a live pages s a' E|a live pages a' E|a live live' f a' Hl E].
  - by eapply inv_allocate.
  - destruct (allocate_contiguous_spec pages a) as (o & b & E' & Hwf' & Hadv & Hg); try apply Hinv.
    rewrite E in E'. injection E' as <- <-. eapply inv_grant; try done. by apply Hg.
  - destruct (allocate_contiguous_spec pages a) as (o & b & E' & Hwf' & Hadv & _); try apply Hinv.
    rewrite E in E'. injection E' as <- <-. destruct Hinv as [Hwf Hdis Hnd Hfr]. simpl in *.
    destruct Hadv as (Er & El & Ers & Erl & Ec & Ecl & Hb).
    split; simpl; unfold used_ranges, free_list, used_reserved in *; rewrite ?Er, ?El, ?Ers, ?Erl, ?Ec, ?Ecl; try done.
    intros f Hf. destruct (Hfr f Hf) as (? & ? & ?). split_and!; [done|by apply Hb|done].
  - by eapply inv_free.
Qed.

Lemma step_tables st st' : frame_step st st' → inv st →
  used_ranges st'.1 = used_ranges st.1 ∧ used_reserved st'.1 = used_reserved st.1.
Proof.
  assert (∀ pages a o a', wf a → ranges_disjoint (used_ranges a) →
    allocate_contiguous pages a = Return (o, a') →
    used_ranges a' = used_ranges a ∧ used_reserved a' = used_reserved a) as Hc.
  { intros pages a o a' Hwf Hdis E. destruct (allocate_contiguous_spec pages a Hwf Hdis) as (? & ? & E' & _ & Hadv & _).
    rewrite E in E'. injection E' as <- <-. destruct Hadv as (Er & El & Ers & Erl & _).
    unfold used_ranges, used_reserved. by rewrite Er, El, Ers, Erl. }
  intros Hstep [Hwf Hdis _ _]. destruct Hstep as [a live f a' E|a live pages s a' E|a live pages a' E|a live live' f a' Hl E];
    simpl in *; try by eapply Hc.
  - unfold allocate_frame in E. destruct (N.ltb_spec 0 (reclaimed_len a)); [|by eapply Hc].
    destruct (slice_get _ _); simpl in E; [|done..]. by injection E as _ <-.
  - unfold free_frame in E. destruct (_ <=? _); [by injection E as <-|].
    destruct (slice_set _ _ _); simpl in E; [|done..]. by injection E as <-.
Qed.

Lemma history_inv st st' : rtc frame_step st st' → inv st →
  inv st' ∧ used_ranges st'.1 = used_ranges st.1 ∧ used_reserved st'.1 = used_reserved st.1.
Proof.
  induction 1 as [|st mid st' Hs _ IH]; [done|]. intros Hinv.
  destruct (step_tables _ _ Hs Hinv) as [E1 E2]. rewrite <- E1, <- E2. apply IH. by eapply inv_step.
Qed.

(** *** The memory map *)

Definition usable (e : MemoryEntry.t) : bool :=
  match MemoryEntry.entry_type e with EntryType.USABLE => true | _ => false end.
Definition kept_back (e : MemoryEntry.t) : bool :=
  match MemoryEntry.entry_type e with
  | EntryType.BOOTLOADER_RECLAIMABLE | EntryType.EXECUTABLE_AND_MODULES => true
  | _ => false
  end.
Definition entry_end (e : MemoryEntry.t) : N := MemoryEntry.base e + MemoryEntry.length e.
Definition entries_apart (e1 e2 : MemoryEntry.t) : Prop :=
  usable e1 = true → usable e2 = true →
  entry_end e1 ≤ MemoryEntry.base e2 ∨ entry_end e2 ≤ MemoryEntry.base e1.
(** What the boot protocol promises: usable entries do not overlap. *)
Definition entries_disjoint (map : list MemoryEntry.t) : Prop := ForallOrdPairs entries_apart map.

Definition covers (e : MemoryEntry.t) (r : Range.t) : Prop :=
  MemoryEntry.base e ≤ Range.start r ∧ Range.end_ r ≤ entry_end e.

Lemma aligned_range base length start : align_up base PAGE_SIZE = Return start →
  start < align_down (saturating_add base length) PAGE_SIZE →
  range_ok (Range.mk start (align_down (saturating_add base length) PAGE_SIZE)) ∧
  base ≤ start ∧ align_down (saturating_add base length) PAGE_SIZE ≤ base + length.
Proof.
  intros E Hlt. apply align_up_Return in E as [? Hp]; [|done].
  destruct (align_down_spec (saturating_add base length) PAGE_SIZE page_pos) as [Hle Hpe].
  unfold range_ok. simpl. unfold saturating_add in *. split_and!; (done || lia).
Qed.

(** What the loop over the map has built when [todo] is left of it. *)
Record built (done todo : list MemoryEntry.t) (a : allocator) : Prop := {
  built_wf : wf a;
  built_start : current a = 0 ∧ reclaimed_len a = 0;
  built_ranges : ∀ r, r ∈ used_ranges a → ∃ e, e ∈ done ∧ usable e = true ∧ covers e r;
  built_disjoint : ranges_disjoint (used_ranges a);
  built_apart : ∀ r e, r ∈ used_ranges a → e ∈ todo → usable e = true →
    Range.end_ r ≤ MemoryEntry.base e ∨ entry_end e ≤ Range.start r;
  built_count : reserved_len a ≤ Prelude.len (filter (λ e, kept_back e = true) done);
  built_kept : Prelude.len (filter (λ e, kept_back e = true) (done ++ todo)) ≤ 32 →
    ∀ e, e ∈ done → kept_back e = true → page (MemoryEntry.base e) → page (MemoryEntry.length e) →
      0 < MemoryEntry.length e → entry_end e ≤ u64_max →
      Range.mk (MemoryEntry.base e) (entry_end e) ∈ used_reserved a
}.

Lemma align_up_page base start : page base → align_up base PAGE_SIZE = Return start → start = base.
Proof.
  intros Hp E. apply align_up_Return in E as [? Hps]; [|done].
  destruct (decide (base < start)) as [Hlt|]; [|lia]. pose proof (page_distinct base start Hp Hps Hlt). lia.
Qed.
Lemma align_down_page n : page n → align_down n PAGE_SIZE = n.
Proof.
  intros Hp. unfold page in Hp. unfold align_down. destruct (N.eqb_spec PAGE_SIZE 0); [done|].
  pose proof (N.div_mod n PAGE_SIZE page_pos). lia.
Qed.

Lemma usable_not_kept e : usable e = true → kept_back e = true → False.
Proof. unfold usable, kept_back. by destruct (MemoryEntry.entry_type e). Qed.
Lemma kept_app done e todo : kept_back e = true →
  Prelude.len (filter (λ e, kept_back e = true) (done ++ e :: todo)) ≤ 32 →
  Prelude.len (filter (λ e, kept_back e = true) done) < 32.
Proof. intros He. unfold Prelude.len. rewrite filter_app, filter_cons, decide_True, length_app by done. simpl. lia. Qed.
Lemma kept_snoc done e : Prelude.len (filter (λ e, kept_back e = true) (done ++ [e]))
  = Prelude.len (filter (λ e, kept_back e = true) done) + (if kept_back e then 1 else 0).
Proof.
  unfold Prelude.len. rewrite filter_app, length_app, filter_cons, filter_nil.
  destruct (kept_back e); simpl; lia.
Qed.

(** An entry that adds nothing. *)
Lemma built_skip done e todo a : built done (e :: todo) a →
  (kept_back e = true → Prelude.len (filter (λ e, kept_back e = true) (done ++ e :: todo)) ≤ 32 →
   page (MemoryEntry.base e) → page (MemoryEntry.length e) → 0 < MemoryEntry.length e →
   entry_end e ≤ u64_max → False) →
  built (done ++ [e]) todo a.
Proof.
  intros [Hwf Hst Hr Hd Ha Hc Hk] Hno. split; try done.
  - intros r Hin. destruct (Hr r Hin) as (x & ? & ?). exists x. split; [apply elem_of_app; by left|done].
  - intros r x Hin Hx. apply Ha; [done|by right].
  - rewrite kept_snoc. lia.
  - rewrite <- app_assoc. simpl. intros Hn x [Hx|Hx]%elem_of_app; [by apply Hk|].
    apply list_elem_of_singleton in Hx as ->. intros. exfalso. by apply Hno.
Qed.

(** A usable entry that becomes a range. *)
Lemma built_add done e todo a r : built done (e :: todo) a → Forall (entries_apart e) todo →
  usable e = true → range_ok r → covers e r → len a < Prelude.len (ranges a) →
  built (done ++ [e]) todo (a <| ranges := <[N.to_nat (len a) := r]> (ranges a) |> <| len ::= N.succ |>).
Proof.
  intros [Hwf [Hst Hst'] Hr Hd Ha Hc Hk] Hap Hu Hok Hcov Hroom. unfold update_field. simpl.
  set (a' := mk _ _ _ _ _ _ _ _).
  assert (used_ranges a' = used_ranges a ++ [r]) as E by (by apply take_push).
  assert (∀ x, x ∈ used_ranges a → Range.end_ x ≤ Range.start r ∨ Range.end_ r ≤ Range.start x) as Hsep.
  { intros x Hx. destruct (Ha x e Hx) as [?|?]; [by left|done|..]; destruct Hcov; lia. }
  split; rewrite ?E; try done.
  - destruct Hwf as [Hw1 Hw2 Hw3 Hw4 Hw5 Hw6]. split; try done.
    + simpl. rewrite length_insert. unfold Prelude.len in Hroom. lia.
    + rewrite E. apply Forall_app. split; [done|]. by apply Forall_singleton.
    + simpl. split; [by destruct Hw6|lia].
  - intros x [Hx|Hx]%elem_of_app.
    + destruct (Hr x Hx) as (y & ? & ?). exists y. split; [apply elem_of_app; by left|done].
    + apply list_elem_of_singleton in Hx as ->. exists e. split_and!; try done. apply elem_of_app. right. by apply list_elem_of_singleton.
  - assert (∀ i x, (used_ranges a ++ [r]) !! i = Some x →
      (used_ranges a !! i = Some x) ∨ (i = length (used_ranges a) ∧ x = r)) as Hcase.
    { intros i x Hx. apply lookup_app_Some in Hx as [?|[? Hx]]; [by left|right].
      apply list_lookup_singleton_Some in Hx as [? ->]. split; [lia|done]. }
    intros i j x y [Hi|[-> ->]]%Hcase [Hj|[-> ->]]%Hcase Hij; [by apply (Hd i j)| | |done].
    + apply Hsep. by apply list_elem_of_lookup_2 with i.
    + apply or_comm, Hsep. by apply list_elem_of_lookup_2 with j.
  - intros x y [Hx|Hx]%elem_of_app Hy Huy; [apply Ha; [done|by right|done]|].
    apply list_elem_of_singleton in Hx as ->. pose proof (proj1 (Forall_forall _ _) Hap y Hy Hu Huy).
    destruct Hcov. lia.
  - rewrite kept_snoc. simpl. lia.
  - rewrite <- app_assoc. simpl. intros Hn x [Hx|Hx]%elem_of_app Hkx; [by apply Hk|].
    apply list_elem_of_singleton in Hx as ->. exfalso. by eapply usable_not_kept.
Qed.

(** A reserved entry that is recorded. *)
Lemma built_reserve done e todo a r : built done (e :: todo) a → kept_back e = true → range_ok r →
  reserved_len a < Prelude.len (reserved a) →
  (page (MemoryEntry.base e) → page (MemoryEntry.length e) → entry_end e ≤ u64_max →
   r = Range.mk (MemoryEntry.base e) (entry_end e)) →
  built (done ++ [e]) todo
    (a <| reserved := <[N.to_nat (reserved_len a) := r]> (reserved a) |> <| reserved_len ::= N.succ |>).
Proof.
  intros [Hwf [Hst Hst'] Hr Hd Ha Hc Hk] Hke Hok Hroom Hexact. unfold update_field. simpl.
  set (a' := mk _ _ _ _ _ _ _ _).
  assert (used_reserved a' = used_reserved a ++ [r]) as E by (by apply take_push).
  split; try done.
  - destruct Hwf as [Hw1 Hw2 Hw3 Hw4 Hw5 Hw6]. split; try done.
    + simpl. rewrite length_insert. unfold Prelude.len in Hroom. lia.
    + rewrite E. apply Forall_app. split; [done|]. by apply Forall_singleton.
  - intros x Hx. destruct (Hr x Hx) as (y & ? & ?). exists y. split; [apply elem_of_app; by left|done].
  - intros x y Hx Hy. apply Ha; [done|by right].
  - rewrite kept_snoc, Hke. simpl. lia.
  - rewrite E, <- app_assoc. simpl. intros Hn x [Hx|Hx]%elem_of_app Hkx Hp Hpl Hpos Hmax.
    + apply elem_of_app. left. by apply Hk.
    + apply list_elem_of_singleton in Hx as ->. apply elem_of_app. right. apply list_elem_of_singleton. symmetry. by apply Hexact.
Qed.

(** Both kinds of reserved entry. *)
Lemma built_kept_entry done e todo a a' : built done (e :: todo) a → kept_back e = true →
  add_reserved_range (MemoryEntry.base e) (MemoryEntry.length e) a = Return a' →
  built (done ++ [e]) todo a'.
Proof.
  intros Hb Hke. unfold add_reserved_range. destruct (align_up _ _) as [start| |] eqn:Eal; simpl; [|done..].
  set (e_end := align_down (saturating_add (MemoryEntry.base e) (MemoryEntry.length e)) PAGE_SIZE) in *.
  assert (page (MemoryEntry.base e) → page (MemoryEntry.length e) → entry_end e ≤ u64_max →
    start = MemoryEntry.base e ∧ e_end = entry_end e) as Hexact.
  { intros Hp Hpl Hmax. split; [by apply align_up_page|]. unfold e_end, entry_end, saturating_add in *.
    rewrite N.min_l by done. apply align_down_page. by apply page_add. }
  destruct (N.leb_spec e_end start) as [Hle|Hlt]; simpl.
  { intros [= <-]. apply built_skip; [done|]. intros _ _ Hp Hpl Hpos Hmax. destruct Hexact as [-> E]; try done.
    rewrite E in Hle. unfold entry_end in Hle. lia. }
  destruct (N.leb_spec (Prelude.len (reserved a)) (reserved_len a)) as [Hfull|Hroom].
  { intros [= <-]. apply built_skip; [done|]. intros _ Hn _ _ _ _. apply kept_app in Hn; [|done].
    destruct Hb as [Hwf _ _ _ _ Hc _]. destruct (wf_reserved a Hwf). unfold Prelude.len in *. lia. }
  rewrite (proj2 (slice_set_Return (reserved a) (reserved_len a) _ _)) by (unfold Prelude.len in Hroom; split; [lia|done]).
  simpl. intros [= <-]. destruct (aligned_range _ _ _ Eal Hlt) as (? & ? & ?).
  apply built_reserve; try done. intros Hp Hpl Hmax. by destruct Hexact as [-> ->].
Qed.

Lemma built_entry done e todo a a' : built done (e :: todo) a → Forall (entries_apart e) todo →
  add_entry a e = Return a' → built (done ++ [e]) todo a'.
Proof.
  intros Hb Hap. unfold add_entry. destruct (MemoryEntry.entry_type e) eqn:Et.
  - unfold add_range. destruct (align_up _ _) as [start| |] eqn:Eal; simpl; [|done..].
    destruct (N.leb_spec (align_down (saturating_add (MemoryEntry.base e) (MemoryEntry.length e)) PAGE_SIZE) start) as [|Hlt];
      simpl; [|destruct (N.leb_spec (Prelude.len (ranges a)) (len a)) as [|Hroom]].
    1,2: intros [= <-]; apply built_skip; [done|]; unfold kept_back; by rewrite Et.
    rewrite (proj2 (slice_set_Return (ranges a) (len a) _ _)) by (unfold Prelude.len in Hroom; split; [lia|done]).
    simpl. intros [= <-]. destruct (aligned_range _ _ _ Eal Hlt) as (? & ? & ?).
    apply built_add; try done. { unfold usable. by rewrite Et. }
  - apply (built_kept_entry done e todo a a' Hb). unfold kept_back. by rewrite Et.
  - apply (built_kept_entry done e todo a a' Hb). unfold kept_back. by rewrite Et.
  - intros [= <-]. apply built_skip; [done|]. unfold kept_back. by rewrite Et.
Qed.

Lemma built_map todo : ∀ done a a', built done todo a → ForallOrdPairs entries_apart todo →
  fold_outcome add_entry todo a = Return a' → built (done ++ todo) [] a'.
Proof.
  induction todo as [|e todo IH]; intros done a a' Hb Hd; simpl.
  - intros [= <-]. by rewrite app_nil_r.
  - destruct (add_entry a e) as [b| |] eqn:E; simpl; [|done..]. intros Ef. inversion Hd; subst.
    rewrite (cons_middle e done todo), app_assoc. eapply IH; [|done..]. by eapply built_entry.
Qed.

Lemma built_new map : built [] map FrameAllocator.new.
Proof.
  split; try done.
  - intros r Hr. by apply elem_of_nil in Hr.
  - intros r e Hr. by apply elem_of_nil in Hr.
  - intros _ e He. by apply elem_of_nil in He.
Qed.

(** The allocator at boot. *)
Lemma init_allocator_spec map a : init_allocator map = Return a → entries_disjoint map →
  inv (a, []) ∧
  (∀ r, r ∈ used_ranges a → ∃ e, e ∈ map ∧ usable e = true ∧ covers e r) ∧
  (Prelude.len (filter (λ e, kept_back e = true) map) ≤ 32 → ∀ e, e ∈ map → kept_back e = true →
    page (MemoryEntry.base e) → page (MemoryEntry.length e) → 0 < MemoryEntry.length e →
    entry_end e ≤ u64_max → Range.mk (MemoryEntry.base e) (entry_end e) ∈ used_reserved a).
Proof.
  unfold init_allocator. destruct (fold_outcome _ _ _) as [b| |] eqn:E; simpl; [|done..]. intros Er Hd.
  apply (built_map map [] _ _ (built_new map) Hd) in E as [Hwf [Hc Hrl] Hr Hdis _ _ Hk]. simpl in *.
  rewrite app_nil_r in Hk. assert (∃ n, page n ∧ a = b <| current := 0 |> <| next := n |>) as (n & Hn & ->).
  { unfold reset_cursor in Er. simpl in Er. destruct (N.ltb_spec 0 (len b)) as [Hpos|].
    - destruct (wf_ranges b Hwf). destruct (used_lookup (ranges b) (len b) 0) as (r & Eg & Hin);
        [done|unfold Prelude.len; lia|]. rewrite Eg in Er. simpl in Er. injection Er as <-. exists (Range.start r).
      split; [|done]. apply (proj1 (Forall_forall _ _) (wf_usable b Hwf) r), (list_elem_of_lookup_2 _ _ _ Hin).
    - injection Er as <-. by exists 0. }
  unfold update_field. simpl. split_and!; [|exact Hr|exact Hk].
  assert (free_list b = []) as Hfl by (unfold free_list; by rewrite Hrl).
  split; simpl; try done.
  - destruct Hwf. split; try done. simpl. split; [done|lia].
  - unfold free_list in *. simpl. rewrite Hfl. constructor.
  - unfold free_list in *. simpl. rewrite Hfl. intros f Hf. by apply elem_of_nil in Hf.
Qed.

(** C20: a frame in use is private.  Whatever the sequence of single-frame and contiguous
    allocations and of frames given back by their owners, after boot from any memory map whose
    usable entries do not overlap: no frame is in use twice, two frames in use do not overlap,
    every frame in use lies inside a usable entry of the map, it touches no page-aligned entry
    of boot-loader or kernel memory (of which the table holds 32), and the next allocation
    returns. *)
Theorem frames_in_use_are_private map a0 a live :
  init_allocator map = Return a0 → entries_disjoint map → rtc frame_step (a0, []) (a, live) →
  NoDup live ∧
  (∀ f g, f ∈ live → g ∈ live → f ≠ g → f + PAGE_SIZE ≤ g ∨ g + PAGE_SIZE ≤ f) ∧
  (∀ f, f ∈ live → page f ∧
    (∃ e, e ∈ map ∧ usable e = true ∧ MemoryEntry.base e ≤ f ∧ f + PAGE_SIZE ≤ entry_end e) ∧
    (Prelude.len (filter (λ e, kept_back e = true) map) ≤ 32 → ∀ e, e ∈ map → kept_back e = true →
      page (MemoryEntry.base e) → page (MemoryEntry.length e) → entry_end e ≤ u64_max →
      f + PAGE_SIZE ≤ MemoryEntry.base e ∨ entry_end e ≤ f)) ∧
  returns (allocate_frame a).
Proof.
  intros E Hd Hrun. destruct (init_allocator_spec map a0 E Hd) as (Hinv0 & Hr & Hk).
  destruct (history_inv _ _ Hrun Hinv0) as ([Hwf Hdis Hnd Hfr] & Er & Es). simpl in *.
  assert (∀ f, f ∈ live → page f) as Hpage.
  { intros f Hf. apply Hfr. apply elem_of_app. by left. }
  split_and!.
  - by apply NoDup_app in Hnd as [? _].
  - intros f g Hf Hg Hne. destruct (N.lt_total f g) as [Hlt|[?|Hlt]]; [left|done|right];
      by apply page_distinct; auto.
  - intros f Hf. destruct (Hfr f) as (Hp & (j & r & Hj & ? & ? & _) & Hres). { apply elem_of_app. by left. }
    split_and!; [done| |].
    + rewrite Er in Hj. destruct (Hr r) as (e & ? & ? & Hcov). { by eapply list_elem_of_lookup_2. }
      exists e. destruct Hcov. split_and!; (done || lia).
    + intros Hn e He Hke Hpb Hpl Hmax. destruct (decide (MemoryEntry.length e = 0)) as [E0|].
      * unfold entry_end. rewrite E0. destruct (N.lt_total f (MemoryEntry.base e)) as [Hlt|[|Hlt]]; [left|right; lia..].
        by apply page_distinct.
      * specialize (Hk Hn e He Hke Hpb Hpl). rewrite <- Es in Hk.
        assert (¬ overlaps f (f + PAGE_SIZE) (Range.mk (MemoryEntry.base e) (entry_end e))) as Hno.
        { apply Hres, Hk; [lia|done]. }
        unfold overlaps in Hno. simpl in Hno. lia.
  - unfold allocate_frame. destruct (N.ltb_spec 0 (reclaimed_len a)) as [Hpos|].
    + destruct (free_list_pop a Hwf Hpos) as (f & Ef & _). simpl in Ef |- *. rewrite Ef. simpl. by eexists.
    + destruct (allocate_contiguous_spec 1 a Hwf Hdis) as (o & a' & -> & _). by eexists.
Qed.

Definition sample_map : list MemoryEntry.t :=
  [MemoryEntry.mk 0x1000 0x9000 EntryType.USABLE;
   MemoryEntry.mk 0x3000 0x2000 EntryType.EXECUTABLE_AND_MODULES].

Lemma frames_in_use_are_private_witness :
  ∃ a0 a, init_allocator sample_map = Return a0 ∧
    rtc frame_step (a0, []) (a, [0x5000; 0x2000; 0x1000]) ∧ NoDup [0x5000; 0x2000; 0x1000].
Proof.
  destruct (init_allocator sample_map) as [a0| |] eqn:E; [|vm_compute in E; discriminate E..].
  assert (∃ a, rtc frame_step (a0, []) (a, [0x5000; 0x2000; 0x1000])) as (a & Hrun).
  { vm_compute in E. injection E as <-. eexists.
    do 3 (eapply rtc_l; [apply step_allocate; vm_compute; reflexivity|]). apply rtc_refl. }
  exists a0, a. split_and!; [done..|].
  apply (frames_in_use_are_private sample_map a0 a _ E); [|done].
  constructor; [|constructor; [constructor|constructor]]. apply Forall_singleton. intros _ [=].
Defined.

(** Reserved memory that is not page aligned is rounded inwards: the pages it shares with
    usable memory are handed out. *)
Theorem unaligned_reservation_is_not_kept :
  (a ← init_allocator [MemoryEntry.mk 0x1000 0x9000 EntryType.USABLE;
         MemoryEntry.mk 0x1800 0x1000 EntryType.EXECUTABLE_AND_MODULES];
   '(o, _) ← allocate_frame a;
   Return o) = Return (Some 0x1000).
Proof. by vm_compute. Qed.
End FrameSpec.

(** ** The bump heap *)

Module HeapSpec.
Import BumpHeap.

(** Serve a request for [size] bytes aligned to [align], and note the block. *)
Definition serve (st : list (N * N * N) * BumpHeap.t) (request : N * N)
    : outcome (list (N * N * N) * BumpHeap.t) :=
  '(o, h) ← alloc request.1 request.2 AllocationLifetime.KernelTransient st.2;
  match o with
  | Some r => Return ((AllocationRecord.start r, AllocationRecord.size r, request.2) :: st.1, h)
  | None => Return (st.1, h)
  end.

Notation block_start b := b.1.1 (only parsing).
Notation block_end b := (b.1.1 + b.1.2) (only parsing).

Record heap_inv (lo hi : N) (st : list (N * N * N) * BumpHeap.t) : Prop := {
  hi_bounds : start st.2 = lo ∧ end_ st.2 = hi ∧ lo ≤ next st.2 ∧ next st.2 ≤ hi;
  hi_count : allocations st.2 = len st.1;
  hi_blocks : Forall (λ b, lo ≤ block_start b ∧ block_end b ≤ next st.2 ∧ block_start b mod b.2 = 0) st.1;
  hi_order : ForallOrdPairs (λ newer older, block_end older ≤ block_start newer) st.1
}.

Lemma serve_inv lo hi st req : heap_inv lo hi st → 0 < req.2 → hi + req.2 ≤ u64_max → len st.1 < u64_max →
  ∃ st', serve st req = Return st' ∧ heap_inv lo hi st' ∧ len st'.1 ≤ len st.1 + 1.
Proof.
  destruct st as [bs h], req as [size al]. simpl. intros [Hb Hc Hbl Ho] Hal Hmax Hlen. simpl in *.
  unfold serve, alloc. simpl. rewrite align_usize.
  destruct (align_up_spec (next h) al) as (s & -> & Hs & Hmod); [lia|lia|]. simpl.
  destruct (N.ltb_spec (end_ h) (saturating_add s size)) as [|Hle]; simpl.
  { exists (bs, h). split_and!; [done|done|simpl; lia]. }
  rewrite (proj2 (add_u64_Return (allocations h) 1 (allocations h + 1))) by (unfold u64_max in *; lia). simpl.
  eexists. split; [done|]. assert (saturating_add s size = s + size) as Es by (unfold saturating_add in *; lia).
  rewrite Es in *. split.
  - split; simpl.
    + lia.
    + unfold len in *. simpl. lia.
    + constructor; [simpl; split_and!; [lia|lia|done]|]. eapply Forall_impl; [done|]. intros b (? & ? & ?). split_and!; [done|lia|done].
    + constructor; [|done]. eapply Forall_impl; [done|]. intros b (? & ? & ?). simpl. lia.
  - unfold len. simpl. lia.
Qed.

(** The bump heap hands out disjoint blocks: for every sequence of requests the heap
    answers each one; the blocks lie inside the heap, each is aligned as asked, a later block
    starts after every earlier one ends, and the statistics count the blocks and account for
    every byte of the heap. *)
Theorem heap_blocks_are_disjoint lo size requests :
  lo + size < u64_max → len requests < u64_max →
  Forall (λ r, 0 < r.2 ∧ lo + size + r.2 ≤ u64_max) requests →
  ∃ blocks h, fold_outcome serve requests ([], new lo size) = Return (blocks, h) ∧
    Forall (λ b, lo ≤ block_start b ∧ block_end b ≤ lo + size ∧ block_start b mod b.2 = 0) blocks ∧
    ForallOrdPairs (λ newer older, block_end older ≤ block_start newer) blocks ∧
    AllocationStats.allocations (stats h) = len blocks ∧
    AllocationStats.used (stats h) + AllocationStats.free (stats h) = AllocationStats.total (stats h) ∧
    AllocationStats.total (stats h) = size.
Proof.
  intros Hmax Hlen Hreq.
  assert (∀ st, heap_inv lo (lo + size) st → len st.1 + len requests < u64_max →
    ∃ st', fold_outcome serve requests st = Return st' ∧ heap_inv lo (lo + size) st') as Hrun.
  { clear Hlen. induction Hreq as [|r rs [Hr1 Hr2] _ IH]; intros st Hst Hl; [by exists st|]. simpl.
    unfold len in Hl. simpl in Hl.
    destruct (serve_inv lo (lo + size) st r) as (st' & -> & Hst' & Hl'); try done; [unfold len; lia|].
    simpl. apply IH; [done|]. unfold len in *. lia. }
  destruct (Hrun ([], new lo size)) as ([bs h] & E & [Hb Hc Hbl Ho]).
  - split; simpl; [|done|constructor..]. unfold saturating_add. lia.
  - simpl. change (len []) with 0. lia.
  - exists bs, h. simpl in *. unfold stats, saturating_sub. simpl. split_and!; try done; [|lia..].
    eapply Forall_impl; [done|]. intros b (? & ? & ?). split_and!; [done|lia|done].
Qed.

Lemma heap_blocks_are_disjoint_witness :
  ∃ blocks h, fold_outcome serve [(64, 16); (3, 1); (64, 16)] ([], new 0x1000 0x1000) = Return (blocks, h) ∧
    AllocationStats.total (stats h) = 0x1000.
Proof.
  destruct (heap_blocks_are_disjoint 0x1000 0x1000 [(64, 16); (3, 1); (64, 16)]) as (bs & h & E & H).
  - by vm_compute.
  - by vm_compute.
  - repeat constructor; by vm_compute.
  - exists bs, h. split; [exact E|apply H].
Defined.

(** The address of an allocation, and the heap after it. *)
Definition address (x : option AllocationRecord.t * BumpHeap.t) : option N * BumpHeap.t :=
  (option_map AllocationRecord.start x.1, x.2).

(** The two allocators over a bump heap hand out the same addresses. *)
Lemma global_alloc_is_alloc size align lifetime h :
  global_alloc size align h
  = address <$> alloc size align lifetime h.
Proof.
  unfold global_alloc, alloc. destruct (align_up_usize _ _); simpl; [|done..].
  destruct (_ <? _); simpl; [done|]. by destruct (add_u64 _ _).
Qed.

(** At boot the kernel's heap and the global allocator are set up over the same memory:
    the kernel's heap allocations and the global allocator's get the same addresses. *)
Theorem boot_heaps_share_memory map offset a heap global_heap :
  init_memory (Some map) (Some offset) = Return (a, Some heap, global_heap) →
  start heap = start global_heap ∧ end_ heap = end_ global_heap ∧
  ∀ size align lifetime, global_alloc size align global_heap
    = address <$> alloc size align lifetime heap.
Proof.
  intros E. assert (heap = global_heap) as ->.
  { unfold init_memory in E. destruct (init_allocator map) as [a0| |]; simpl in E; [|done..].
    destruct (FrameAllocator.total_frames a0); simpl in E; [|done..]. unfold init_heap in E.
    destruct (FrameAllocator.allocate_contiguous HEAP_PAGES a0) as [[[p|] b]| |]; simpl in E; [|done..].
    destruct (add_u64 offset p) as [v| |]; simpl in E; [|done..]. by injection E as _ <- <-. }
  split_and!; [done..|]. intros. apply global_alloc_is_alloc.
Qed.

Lemma boot_heaps_share_memory_witness :
  ∃ a heap global_heap,
    init_memory (Some [MemoryEntry.mk 0x100000 0x1000000 EntryType.USABLE]) (Some 0xFFFF800000000000)
      = Return (a, Some heap, global_heap) ∧
    fst <$> global_alloc 64 16 global_heap = Return (Some 0xFFFF800000100000) ∧
    start heap = start global_heap.
Proof.
  set (m := init_memory _ _). assert (∃ a heap global_heap, m = Return (a, Some heap, global_heap) ∧
    fst <$> global_alloc 64 16 global_heap = Return (Some 0xFFFF800000100000)) as (a & h & g & E & Hg).
  { destruct m as [[[a [h|]] g]| |] eqn:E; vm_compute in E; try discriminate E. injection E as <- <- <-.
    eexists _, _, _. split; [reflexivity|]. by vm_compute. }
  exists a, h, g. split_and!; [done..|]. by apply (boot_heaps_share_memory _ _ a h g E).
Defined.
End HeapSpec.

(** ** Memory routines *)

Module MemorySpec.
(** Memory after the [n] bytes at [src] were copied to [dest]. *)
Definition copied (dest src : N) (n : nat) (m : memory) : memory := λ x,
  if (dest <=? x) && (x <? dest + N.of_nat n) then m (src + (x - dest)) else m x.

Lemma forward_copy dest src n : dest ≤ src ∨ src + N.of_nat n ≤ dest → ∀ m x,
  forward (copy_byte dest src) n m x = copied dest src n m x.
Proof.
  unfold forward, copied. induction n as [|n IH]; intros Hd m x.
  { simpl. rewrite N.add_0_r. destruct (N.leb_spec dest x), (N.ltb_spec x dest); (done || lia). }
  rewrite seq_S, foldl_app, Nat2N.inj_succ in *. simpl. unfold copy_byte at 1, store. rewrite !IH by lia. clear IH.
  destruct (N.eqb_spec x (dest + N.of_nat n)) as [->|Hx].
  - rewrite (proj2 (N.leb_le dest (dest + N.of_nat n))), (proj2 (N.ltb_lt (dest + N.of_nat n) (dest + N.succ (N.of_nat n)))) by lia. simpl.
    replace (dest + N.of_nat n - dest) with (N.of_nat n) by lia.
    destruct (N.leb_spec dest (src + N.of_nat n)), (N.ltb_spec (src + N.of_nat n) (dest + N.of_nat n)); (done || lia).
  - destruct (N.leb_spec dest x), (N.ltb_spec x (dest + N.of_nat n)),
      (N.ltb_spec x (dest + N.succ (N.of_nat n))); (done || lia).
Qed.
Lemma backward_copy dest src n : src ≤ dest → ∀ m x,
  backward (copy_byte dest src) n m x = copied dest src n m x.
Proof.
  intros Hd. unfold backward, copied. induction n as [|n IH]; intros m x.
  { simpl. rewrite N.add_0_r. destruct (N.leb_spec dest x), (N.ltb_spec x dest); (done || lia). }
  rewrite seq_S, reverse_snoc, Nat2N.inj_succ. simpl. rewrite IH. clear IH. unfold copy_byte, store.
  destruct (N.leb_spec dest x), (N.ltb_spec x (dest + N.of_nat n)),
    (N.ltb_spec x (dest + N.succ (N.of_nat n))), (N.eqb_spec x (dest + N.of_nat n)),
    (N.eqb_spec (src + (x - dest)) (dest + N.of_nat n)); simpl; try (done || lia || (f_equal; lia)).
Qed.

(** [memmove] copies as if through a buffer, whether the areas overlap or not, and
    [memcpy] does when they do not overlap. *)
Theorem memmove_handles_overlap dest src n m :
  (∀ x, memmove dest src n m x = copied dest src n m x) ∧
  (dest + N.of_nat n ≤ src ∨ src + N.of_nat n ≤ dest →
   ∀ x, memcpy dest src n m x = copied dest src n m x).
Proof.
  split.
  - intros x. unfold memmove. destruct (N.ltb_spec dest src); [apply forward_copy|apply backward_copy]; lia.
  - intros Hd x. apply forward_copy. lia.
Qed.

Lemma memset_fills dest c n m x :
  memset dest c n m x =
    if (dest <=? x) && (x <? dest + N.of_nat n) then Z.to_N (c mod 256) else m x.
Proof.
  unfold memset, forward. induction n as [|n IH].
  { simpl. rewrite N.add_0_r. destruct (N.leb_spec dest x), (N.ltb_spec x dest); (done || lia). }
  rewrite seq_S, foldl_app, Nat2N.inj_succ in *. simpl. unfold store at 1. rewrite IH. clear IH.
  destruct (N.eqb_spec x (dest + N.of_nat n)), (N.leb_spec dest x), (N.ltb_spec x (dest + N.of_nat n)),
    (N.ltb_spec x (dest + N.succ (N.of_nat n))); simpl; (done || lia).
Qed.

(** [memcmp] is zero exactly on equal areas, and otherwise the difference at the first
    byte where they differ. *)
Theorem memcmp_first_difference s1 s2 n m :
  (memcmp s1 s2 n m = 0%Z ↔ ∀ i, i < N.of_nat n → m (s1 + i) = m (s2 + i)) ∧
  (∀ i, i < N.of_nat n → m (s1 + i) ≠ m (s2 + i) → (∀ j, j < i → m (s1 + j) = m (s2 + j)) →
   memcmp s1 s2 n m = Z.sub (Z.of_N (m (s1 + i))) (Z.of_N (m (s2 + i)))).
Proof.
  unfold memcmp. assert (∀ k,
    (memcmp_from s1 s2 k n m = 0%Z ↔ ∀ i, N.of_nat k ≤ i → i < N.of_nat k + N.of_nat n → m (s1 + i) = m (s2 + i)) ∧
    (∀ i, N.of_nat k ≤ i → i < N.of_nat k + N.of_nat n → m (s1 + i) ≠ m (s2 + i) →
      (∀ j, N.of_nat k ≤ j → j < i → m (s1 + j) = m (s2 + j)) →
      memcmp_from s1 s2 k n m = Z.sub (Z.of_N (m (s1 + i))) (Z.of_N (m (s2 + i))))) as H.
  { induction n as [|n IH]; intros k; simpl.
    { split; [|intros; lia]. split; [|done]. intros; lia. }
    destruct (IH (S k)) as [IH1 IH2]. destruct (N.eqb_spec (m (s1 + N.of_nat k)) (m (s2 + N.of_nat k))) as [E|E].
    - split.
      + rewrite IH1. split; intros H i Hi1 Hi2; [|apply H; lia].
        destruct (decide (i = N.of_nat k)) as [->|]; [done|apply H; lia].
      + intros i Hi1 Hi2 Hne Hlt. apply IH2; try done; try lia.
        * destruct (decide (i = N.of_nat k)) as [->|]; [done|lia].
        * intros j Hj1 Hj2. apply Hlt; lia.
    - split.
      + split; [lia|]. intros H. exfalso. apply E, H; lia.
      + intros i Hi1 Hi2 Hne Hlt. destruct (decide (i = N.of_nat k)) as [->|]; [done|].
        exfalso. apply E, Hlt; lia. }
  destruct (H 0%nat) as [H1 H2]. split.
  - rewrite H1. split; intros Hi i; intros; apply Hi; lia.
  - intros i Hi Hne Hlt. apply H2; try done; try lia. intros j _ Hj. by apply Hlt.
Qed.
End MemorySpec.
