(* ===== verification/BareIo.v ===== *)
(** * Interrupts, ports and input of the bare-metal kernel

    [kernel_bootstrap/src/main.rs]: interrupt descriptors, the programming of the interrupt
    controllers, the timer and the keyboard controller over I/O ports, the queue between the
    keyboard interrupt and the main loop, the scan-code parser, the serial port, and the
    buffers of the demo editor and of the prompt.  The ports are those of [PortIo]: the two
    assembly routines [inb] and [outb] are its operations. *)

From S2P Require Import Prelude Input.
Open Scope list_scope.
Open Scope N_scope.

(** Arithmetic modulo the width of an [AtomicU64]. *)
Definition wrapping_add (a b : N) : N := (a + b) mod 2 ^ 64.
Definition wrapping_sub (a b : N) : N := (a + 2 ^ 64 - b) mod 2 ^ 64.

(** ** Interrupt descriptors *)

Module IdtEntry.
(* kernel_bootstrap/src/main.rs:83-91 IdtEntry *)
Record t := mk {
  offset_low : N; selector : N; ist : N; flags : N; offset_mid : N; offset_high : N; reserved : N
}.
(* kernel_bootstrap/src/main.rs:95-105 IdtEntry::new *)
Definition new : t := mk 0 0 0 0 0 0 0.
(* kernel_bootstrap/src/main.rs:140-140 IDT_PRESENT_INTERRUPT_GATE *)
Definition IDT_PRESENT_INTERRUPT_GATE : N := 0x8E.
(* kernel_bootstrap/src/main.rs:107-116 IdtEntry::set_handler *)
Definition set_handler (addr sel : N) (e : t) : t :=
  mk (N.land addr 0xFFFF) sel 0 IDT_PRESENT_INTERRUPT_GATE (N.land (N.shiftr addr 16) 0xFFFF)
    (N.land (N.shiftr addr 32) 0xFFFFFFFF) 0.
End IdtEntry.

(** The table after [install_idt]; loading its address is the instruction [lidt]. *)
(* kernel_bootstrap/src/main.rs:285-305 install_idt *)
Definition install_idt (irq_timer_entry irq_keyboard_entry code_segment : N) (idt : list IdtEntry.t)
    : outcome (list IdtEntry.t) :=
  e32 ← slice_get idt 32;
  idt ← slice_set idt 32 (IdtEntry.set_handler irq_timer_entry code_segment e32);
  e33 ← slice_get idt 33;
  slice_set idt 33 (IdtEntry.set_handler irq_keyboard_entry code_segment e33).

(** ** The keyboard queue *)

Module KeyboardEventQueue.
(* kernel_bootstrap/src/main.rs:2883-2883 KEYBOARD_QUEUE_SIZE *)
Definition KEYBOARD_QUEUE_SIZE : N := 256.
(* kernel_bootstrap/src/main.rs:2890-2894 KeyboardEventQueue *)
Record t := mk { buffer : list N; write_pos : N; read_pos : N }.
#[global] Instance rebuild_t : Rebuild t := λ q, mk (buffer q) (write_pos q) (read_pos q).
(* kernel_bootstrap/src/main.rs:2899-2906 KeyboardEventQueue::new *)
Definition new : t := mk (replicate (N.to_nat KEYBOARD_QUEUE_SIZE) 0) 0 0.
(* kernel_bootstrap/src/main.rs:2911-2927 KeyboardEventQueue::push *)
Definition push (scancode : N) (q : t) : outcome (bool * t) :=
  let write_idx := write_pos q mod KEYBOARD_QUEUE_SIZE in
  b ← slice_set (buffer q) write_idx scancode;
  let q := q <| buffer := b |> in
  let new_write := wrapping_add (write_pos q) 1 in
  let q := q <| write_pos := new_write |> in
  let read := read_pos q in
  if KEYBOARD_QUEUE_SIZE <=? wrapping_sub new_write read
  then Return (true, q <| read_pos := wrapping_add read 1 |>)
  else Return (false, q).
(* kernel_bootstrap/src/main.rs:2931-2944 KeyboardEventQueue::pop *)
Definition pop (q : t) : outcome (option N * t) :=
  let read := read_pos q in
  let write := write_pos q in
  if read =? write then Return (None, q)
  else
    let read_idx := read mod KEYBOARD_QUEUE_SIZE in
    scancode ← slice_get (buffer q) read_idx;
    Return (Some scancode, q <| read_pos := wrapping_add read 1 |>).
(* kernel_bootstrap/src/main.rs:2947-2951 KeyboardEventQueue::has_pending *)
Definition has_pending (q : t) : bool := negb (read_pos q =? write_pos q).

(** The keyboard interrupt, any number of times. *)
Definition interrupts (codes : list N) (q : t) : outcome t :=
  fold_outcome (λ q c, '(_, q) ← push c q; Return q) codes q.
(** [pop] under interrupts.  Each of its atomic operations is one step; [c1], [c2] and [c3]
    are what the interrupt handler, which runs to its end, pushes after the first, the second
    and the third of them. *)
(* kernel_bootstrap/src/main.rs:2931-2944 KeyboardEventQueue::pop (interleaved) *)
Definition pop_during (c1 c2 c3 : list N) (q : t) : outcome (option N * t) :=
  let read := read_pos q in
  q ← interrupts c1 q;
  let write := write_pos q in
  q ← interrupts c2 q;
  if read =? write then Return (None, q)
  else
    let read_idx := read mod KEYBOARD_QUEUE_SIZE in
    scancode ← slice_get (buffer q) read_idx;
    q ← interrupts c3 q;
    Return (Some scancode, q <| read_pos := wrapping_add read 1 |>).
End KeyboardEventQueue.

(** ** Ports *)

Section ports.
Context {P : Type} `{PortIo P}.

(* kernel_bootstrap/src/main.rs:234-241 timer_irq_handler *)
Definition timer_irq_handler (tick_counter : N) (p : P) : outcome (N * P) :=
  let tick_counter := wrapping_add tick_counter 1 in
  p ← outb 0x20 0x20 p;
  Return (tick_counter, p).
(** [KBD_DEBUG_LOG] is [false]: nothing is logged. *)
(* kernel_bootstrap/src/main.rs:245-272 keyboard_irq_handler *)
Definition keyboard_irq_handler (queue : KeyboardEventQueue.t) (p : P)
    : outcome (KeyboardEventQueue.t * P) :=
  '(status, p) ← inb 0x64 p;
  '(queue, p) ←
    (if N.land status 0x01 =? 0 then Return (queue, p)
     else
       '(scancode, p) ← inb 0x60 p;
       '(_, queue) ← KeyboardEventQueue.push scancode queue;
       Return (queue, p));
  p ← outb 0x20 0x20 p;
  Return (queue, p).

(** Writes in order. *)
Definition outbs (writes : list (N * N)) (p : P) : outcome P :=
  fold_outcome (λ p w, outb w.1 w.2 p) writes p.
(* kernel_bootstrap/src/main.rs:321-343 init_pic *)
Definition init_pic (p : P) : outcome P :=
  outbs [(0x20, 0x11); (0xA0, 0x11); (0x21, 32); (0xA1, 40); (0x21, 0x04); (0xA1, 0x02);
         (0x21, 0x01); (0xA1, 0x01); (0x21, 0xFF); (0xA1, 0xFF)] p.
(* kernel_bootstrap/src/main.rs:346-360 init_pit *)
Definition init_pit (p : P) : outcome P :=
  let divisor := 11932 in
  outbs [(0x43, 0x36); (0x40, N.land divisor 0xFF); (0x40, N.land (N.shiftr divisor 8) 0xFF)] p.
(** [!0x01] on a byte. *)
(* kernel_bootstrap/src/main.rs:363-368 unmask_timer_irq *)
Definition unmask_timer_irq (p : P) : outcome P :=
  '(mask, p) ← inb 0x21 p;
  outb 0x21 (N.land mask (N.lxor 0xFF 0x01)) p.
(* kernel_bootstrap/src/main.rs:371-376 unmask_keyboard_irq *)
Definition unmask_keyboard_irq (p : P) : outcome P :=
  '(mask, p) ← inb 0x21 p;
  outb 0x21 (N.land mask (N.lxor 0xFF 0x02)) p.

(** The loops [for _ in 0..LIMIT]; [n] is what is left of them. *)
Fixpoint wait_status (test : N → bool) (n : nat) (p : P) : outcome (bool * P) :=
  match n with
  | O => Return (false, p)
  | S n =>
      '(status, p) ← inb 0x64 p;
      if test status then Return (true, p) else wait_status test n p
  end.
Definition LIMIT : nat := N.to_nat 10000.
(* kernel_bootstrap/src/main.rs:454-466 ps2_wait_input_clear *)
Definition ps2_wait_input_clear (p : P) : outcome (bool * P) :=
  wait_status (λ status, N.land status 0x02 =? 0) LIMIT p.
(* kernel_bootstrap/src/main.rs:469-481 ps2_wait_output_full *)
Definition ps2_wait_output_full (p : P) : outcome (bool * P) :=
  wait_status (λ status, negb (N.land status 0x01 =? 0)) LIMIT p.
(** The messages to the serial port are left out. *)
(* kernel_bootstrap/src/main.rs:484-524 enable_ps2_keyboard_irq *)
Definition enable_ps2_keyboard_irq (p : P) : outcome P :=
  '(clear, p) ← ps2_wait_input_clear p;
  if negb clear then Return p
  else
    p ← outb 0x64 0x20 p;
    '(full, p) ← ps2_wait_output_full p;
    if negb full then Return p
    else
      '(original, p) ← inb 0x60 p;
      let cmd := N.land (N.lor original 0x01) (N.lxor 0xFF 0x10) in
      if cmd =? original then Return p
      else
        '(clear, p) ← ps2_wait_input_clear p;
        if negb clear then Return p
        else
          p ← outb 0x64 0x60 p;
          '(clear, p) ← ps2_wait_input_clear p;
          if negb clear then Return p else outb 0x60 cmd p.
End ports.

(** ** The serial port

    What the services use of it, as an interface. *)
Class SerialLine (L : Type) := {
  write_byte : N → L → outcome L;
  try_read_byte : L → outcome (option N * L)
}.

(* kernel_bootstrap/src/main.rs:4352-4360 Write for SerialPort::write_str *)
Definition serial_write_str `{SerialLine L} (bytes : list N) (s : L) : outcome L :=
  fold_outcome (λ s byte,
    s ← (if byte =? 10 then write_byte 13 s else Return s);
    write_byte byte s) bytes s.

Module SerialPort.
(* kernel_bootstrap/src/main.rs:4277-4277 COM1 *)
Definition COM1 : N := 0x3F8.
(** [patience] bounds the spinning on the line status; a transmitter that is never ready
    makes the loop endless. *)
(* kernel_bootstrap/src/main.rs:4279-4281 SerialPort *)
Record t (P : Type) := mk { base : N; ports : P; patience : nat }.
Arguments mk {P}.
Arguments base {P}.
Arguments ports {P}.
Arguments patience {P}.
Section with_port.
Context {P : Type} `{PortIo P}.
(* kernel_bootstrap/src/main.rs:4328-4338 SerialPort::inb *)
Definition port_in (offset : N) (s : t P) : outcome (N * t P) :=
  if base s + offset <=? 0xFFFF
  then '(v, p) ← inb (base s + offset) (ports s); Return (v, mk (base s) p (patience s))
  else Panic.
(* kernel_bootstrap/src/main.rs:4340-4348 SerialPort::outb *)
Definition port_out (offset v : N) (s : t P) : outcome (t P) :=
  if base s + offset <=? 0xFFFF
  then p ← outb (base s + offset) v (ports s); Return (mk (base s) p (patience s))
  else Panic.
(* kernel_bootstrap/src/main.rs:4288-4298 SerialPort::init *)
Definition init (s : t P) : outcome (t P) :=
  fold_outcome (λ s w, port_out w.1 w.2 s)
    [(1, 0x00); (3, 0x80); (0, 0x01); (1, 0x00); (3, 0x03); (2, 0xC7); (4, 0x0B)] s.
(* kernel_bootstrap/src/main.rs:4324-4326 SerialPort::transmit_ready *)
Definition transmit_ready (s : t P) : outcome (bool * t P) :=
  '(v, s) ← port_in 5 s; Return (negb (N.land v 0x20 =? 0), s).
(* kernel_bootstrap/src/main.rs:4320-4322 SerialPort::data_ready *)
Definition data_ready (s : t P) : outcome (bool * t P) :=
  '(v, s) ← port_in 5 s; Return (negb (N.land v 0x01 =? 0), s).
(* kernel_bootstrap/src/main.rs:4301-4305 SerialPort::write_byte (the wait) *)
Fixpoint wait_ready (fuel : nat) (s : t P) : outcome (t P) :=
  match fuel with
  | O => Diverge
  | S fuel => '(ready, s) ← transmit_ready s; if ready : bool then Return s else wait_ready fuel s
  end.
(* kernel_bootstrap/src/main.rs:4300-4310 SerialPort::write_byte *)
Definition port_write_byte (byte : N) (s : t P) : outcome (t P) :=
  s ← wait_ready (patience s) s;
  port_out 0 byte s.
(* kernel_bootstrap/src/main.rs:4312-4318 SerialPort::try_read_byte *)
Definition port_try_read_byte (s : t P) : outcome (option N * t P) :=
  '(ready, s) ← data_ready s;
  if ready : bool then '(v, s) ← port_in 0 s; Return (Some v, s) else Return (None, s).
#[global] Instance serial_line : SerialLine (t P) :=
  {| write_byte := port_write_byte; try_read_byte := port_try_read_byte |}.
End with_port.
End SerialPort.

(** ** Scan codes *)

Module Ps2ParserState.
(* kernel_bootstrap/src/main.rs:2197-2201 Ps2ParserState *)
Record t := mk { pending_e0 : bool; shift_pressed : bool; ctrl_pressed : bool }.
#[global] Instance rebuild_t : Rebuild t := λ p, mk (pending_e0 p) (shift_pressed p) (ctrl_pressed p).
(* kernel_bootstrap/src/main.rs:2204-2210 Ps2ParserState::new *)
Definition new : t := mk false false false.
(** The digits of the top row with shift. *)
(* kernel_bootstrap/src/main.rs:2278-2290 Ps2ParserState::process_scancode (shifted digits) *)
Definition shifted_digit (digit : N) : option N :=
  match digit with
  | 1 => Some 33 | 2 => Some 64 | 3 => Some 35 | 4 => Some 36 | 5 => Some 37 | 6 => Some 94
  | 7 => Some 38 | 8 => Some 42 | 9 => Some 40 | 0 => Some 41 | _ => None
  end.
(** The keys with a plain and a shifted character, in ASCII. *)
(* kernel_bootstrap/src/main.rs:2295-2479 Ps2ParserState::process_scancode (letters) *)
Definition letter (code : N) : option (N * N) :=
  match code with
  | 0x10 => Some (113, 81) | 0x11 => Some (119, 87) | 0x12 => Some (101, 69)
  | 0x13 => Some (114, 82) | 0x14 => Some (116, 84) | 0x15 => Some (121, 89)
  | 0x16 => Some (117, 85) | 0x17 => Some (105, 73) | 0x18 => Some (111, 79)
  | 0x19 => Some (112, 80) | 0x1E => Some (97, 65) | 0x1F => Some (115, 83)
  | 0x20 => Some (100, 68) | 0x21 => Some (102, 70) | 0x22 => Some (103, 71)
  | 0x23 => Some (104, 72) | 0x24 => Some (106, 74) | 0x25 => Some (107, 75)
  | 0x26 => Some (108, 76) | 0x2C => Some (122, 90) | 0x2D => Some (120, 88)
  | 0x2E => Some (99, 67) | 0x2F => Some (118, 86) | 0x30 => Some (98, 66)
  | 0x31 => Some (110, 78) | 0x32 => Some (109, 77)
  | _ => None
  end.
(* kernel_bootstrap/src/main.rs:2486-2562 Ps2ParserState::process_scancode (punctuation) *)
Definition punctuation (code : N) : option (N * N) :=
  match code with
  | 0x0C => Some (45, 95) | 0x0D => Some (61, 43) | 0x1A => Some (91, 123) | 0x1B => Some (93, 125)
  | 0x27 => Some (59, 58) | 0x28 => Some (39, 34) | 0x29 => Some (96, 126) | 0x2B => Some (92, 124)
  | 0x33 => Some (44, 60) | 0x34 => Some (46, 62) | 0x35 => Some (47, 63)
  | _ => None
  end.
Definition cased (shift : bool) (k : N * N) : N := if shift then k.2 else k.1.
(** The translation of a make code. *)
(* kernel_bootstrap/src/main.rs:2271-2566 Ps2ParserState::process_scancode (translation) *)
Definition ascii_of (code : N) (p : t) : option N :=
  if code =? 0x01 then Some 0x1B
  else if (0x02 <=? code) && (code <=? 0x0B) then
    let digit := if code =? 0x0B then 0 else code - 1 in
    if shift_pressed p then shifted_digit digit else Some (48 + digit)
  else if (code =? 0x19) && ctrl_pressed p then Some 0x10
  else if code =? 0x39 then Some 32
  else if code =? 0x1C then Some 10
  else if code =? 0x0E then Some 0x08
  else
    match letter code with
    | Some k => Some (cased (shift_pressed p) k)
    | None => cased (shift_pressed p) <$> punctuation code
    end.
(* kernel_bootstrap/src/main.rs:2213-2567 Ps2ParserState::process_scancode *)
Definition process_scancode (scancode : N) (p : t) : option N * t :=
  if scancode =? 0xE0 then (None, p <| pending_e0 := true |>)
  else
    let is_break := negb (N.land scancode 0x80 =? 0) in
    let code := N.land scancode 0x7F in
    if (code =? 0x2A) || (code =? 0x36) then
      (None, p <| shift_pressed := negb is_break |> <| pending_e0 := false |>)
    else if code =? 0x1D then
      (None, p <| ctrl_pressed := negb is_break |> <| pending_e0 := false |>)
    else if pending_e0 p then (None, p <| pending_e0 := false |>)
    else if is_break then (None, p)
    else
      let p := p <| pending_e0 := false |> in
      (ascii_of code p, p).
(** The characters of a stream of scan codes. *)
Fixpoint process (codes : list N) (p : t) : list N * t :=
  match codes with
  | [] => ([], p)
  | c :: codes =>
      let '(o, p) := process_scancode c p in
      let '(out, p) := process codes p in
      (option_list o ++ out, p)
  end.
End Ps2ParserState.

(** ** The demo editor's buffer *)

Module DemoEditor.
(* kernel_bootstrap/src/main.rs:1682-1687 EditorState *)
Record t := mk { buffer : list N; len : N; cursor : N; pending_e0 : bool }.
#[global] Instance rebuild_t : Rebuild t := λ e, mk (buffer e) (len e) (cursor e) (pending_e0 e).
(* kernel_bootstrap/src/main.rs:1691-1698 EditorState::new *)
Definition new : t := mk (replicate (N.to_nat 1024) 0) 0 0 false.
(** [buffer[i + 1] = buffer[i]] and [buffer[i] = buffer[i + 1]]. *)
Definition shift_right (b : list N) (i : nat) : outcome (list N) :=
  x ← slice_get b (N.of_nat i); slice_set b (N.of_nat i + 1) x.
Definition shift_left (b : list N) (i : nat) : outcome (list N) :=
  x ← slice_get b (N.of_nat i + 1); slice_set b (N.of_nat i) x.
(* kernel_bootstrap/src/main.rs:1700-1712 EditorState::insert_char *)
Definition insert_char (ch : N) (e : t) : outcome t :=
  if len e <? Prelude.len (buffer e)
  then
    b ← (if cursor e <? len e
         then fold_outcome shift_right
                (reverse (seq (N.to_nat (cursor e)) (N.to_nat (len e) - N.to_nat (cursor e)))) (buffer e)
         else Return (buffer e));
    b ← slice_set b (cursor e) ch;
    Return (e <| buffer := b |> <| len ::= N.succ |> <| cursor ::= N.succ |>)
  else Return e.
(* kernel_bootstrap/src/main.rs:1714-1724 EditorState::delete_char *)
Definition delete_char (e : t) : outcome t :=
  if 0 <? cursor e
  then
    let e := e <| cursor ::= N.pred |> in
    last ← sub_u64 (len e) 1;
    b ← fold_outcome shift_left
          (seq (N.to_nat (cursor e)) (N.to_nat last - N.to_nat (cursor e))) (buffer e);
    let e := e <| buffer := b |> in
    Return (if 0 <? len e then e <| len ::= N.pred |> else e)
  else Return e.
(* kernel_bootstrap/src/main.rs:1726-1728 EditorState::get_text *)
Definition get_text (e : t) : list N := take (N.to_nat (len e)) (buffer e).
(** What [editor_loop] does with the characters of the keyboard. *)
(* kernel_bootstrap/src/main.rs:1740-1748 editor_loop (one character) *)
Definition type_char (e : t) (ch : N) : outcome t :=
  if ch =? 0x08 then delete_char e else insert_char ch e.
End DemoEditor.

(** ** The prompt *)

(* kernel_bootstrap/src/main.rs:2033-2061 prompt_view *)
Definition prompt_view (cmd : list N) (cols prefix_len : N) : outcome (N * list N * N) :=
  if cols =? 0 then Return (0, [], 0)
  else if cols <=? prefix_len then Return (0, [], cols - 1)
  else
    let available := saturating_sub cols prefix_len in
    if available =? 0 then Return (0, [], saturating_sub cols 1)
    else if available <? len cmd then
      let start := len cmd - available in
      let slice := drop (N.to_nat start) cmd in
      cursor ← add_u64 prefix_len available;
      Return (start, slice, if cols <=? cursor then cols - 1 else cursor)
    else
      cursor ← add_u64 prefix_len (len cmd);
      Return (0, cmd, if cols <=? cursor then cols - 1 else cursor).
(* kernel_bootstrap/src/main.rs:2067-2084 is_typing_byte *)
Definition is_typing_byte (byte : N) : bool :=
  (97 <=? byte) && (byte <=? 122) || (65 <=? byte) && (byte <=? 90) || (48 <=? byte) && (byte <=? 57)
  || bool_decide (byte ∈ [32; 46; 44; 59; 58; 39; 34; 45; 95; 33; 63]).
(* kernel_bootstrap/src/main.rs:4198-4205 palette_query_hash *)
Definition palette_query_hash (query : list N) : N :=
  foldl (λ hash byte, (N.lxor hash byte * 0x100000001b3) mod 2 ^ 64) 0xcbf29ce484222325 query.
