(* ===== verification/BareIoProps.v ===== *)
(** * Correctness of the bare-metal input and output code

    [QueueSpec]: the keyboard queue, alone and under interrupts.  [ParserSpec]: the scan-code
    parser against the translation of the hardware abstraction.  [DemoSpec] and [PromptSpec]:
    the demo editor's buffer and the prompt.  [IdtSpec]: interrupt descriptors. *)

From S2P Require Import Prelude Input BareIo.
Open Scope list_scope.
Open Scope N_scope.

#[local] Ltac Zify.zify_post_hook ::= Z.to_euclidean_division_equations.

(** ** The keyboard queue *)

Module QueueSpec.
Import KeyboardEventQueue.
Notation queue := KeyboardEventQueue.t.

Definition held (q : queue) : N := wrapping_sub (write_pos q) (read_pos q).
Definition slot (q : queue) (i : N) : N := buffer q !!! N.to_nat ((read_pos q + i) mod KEYBOARD_QUEUE_SIZE).
(** The scan codes that wait, the oldest first. *)
Definition contents (q : queue) : list N := (λ i, slot q (N.of_nat i)) <$> seq 0 (N.to_nat (held q)).
Record wf (q : queue) : Prop := {
  wf_buffer : length (buffer q) = 256%nat;
  wf_write : write_pos q < 2 ^ 64;
  wf_read : read_pos q < 2 ^ 64;
  wf_held : held q ≤ 255
}.

Lemma contents_length q : length (contents q) = N.to_nat (held q).
Proof. unfold contents. by rewrite length_fmap, length_seq. Qed.
Lemma held_wraps q : wf q → write_pos q = (read_pos q + held q) mod 2 ^ 64.
Proof. intros [_ ? ? _]. unfold held, wrapping_sub. lia. Qed.

(** The queue whose oldest code was taken. *)
Lemma take_oldest q : wf q → 0 < held q → ∃ x,
  slice_get (buffer q) (read_pos q mod KEYBOARD_QUEUE_SIZE) = Return x ∧
  let q' := q <| read_pos := wrapping_add (read_pos q) 1 |> in
  wf q' ∧ held q' = held q - 1 ∧ contents q = x :: contents q'.
Proof.
  intros [Hb Hw Hr Hh] Hpos. assert (read_pos q mod KEYBOARD_QUEUE_SIZE < 256) as Hidx by (unfold KEYBOARD_QUEUE_SIZE; lia).
  destruct (lookup_lt_is_Some_2 (buffer q) (N.to_nat (read_pos q mod KEYBOARD_QUEUE_SIZE))) as [x Hx]; [lia|].
  exists x. split; [by apply slice_get_Return|]. cbv zeta.
  assert (held (q <| read_pos := wrapping_add (read_pos q) 1 |>) = held q - 1) as Eh.
  { unfold held, wrapping_sub, wrapping_add in *. simpl. lia. }
  split_and!.
  - split; simpl; [done|done|unfold wrapping_add; lia|lia].
  - done.
  - unfold contents. rewrite Eh. replace (N.to_nat (held q)) with (S (N.to_nat (held q - 1))) by lia.
    simpl. f_equal.
    + unfold slot. rewrite N.add_0_r. by apply list_lookup_total_correct.
    + rewrite <- fmap_S_seq, <- list_fmap_compose. apply list_fmap_ext. intros i k _. simpl. unfold slot, wrapping_add. simpl.
      f_equal. unfold KEYBOARD_QUEUE_SIZE. lia.
Qed.

(** A push: the code comes last; when 255 codes wait, the oldest is dropped. *)
Lemma push_spec c q : wf q → ∃ q',
  push c q = Return (bool_decide (held q = 255), q') ∧ wf q' ∧
  read_pos q' = (if bool_decide (held q = 255) then wrapping_add (read_pos q) 1 else read_pos q) ∧
  contents q' = (if bool_decide (held q = 255) then tail (contents q) else contents q) ++ [c].
Proof.
  intros Hwf. destruct Hwf as [Hb Hw Hr Hh] eqn:EH. pose proof (held_wraps q Hwf) as Hwrap. clear EH.
  assert (write_pos q mod 256 < 256) as Hidx by lia.
  unfold push. rewrite (proj2 (slice_set_Return (buffer q) _ c _)) by (unfold KEYBOARD_QUEUE_SIZE; split; [lia|done]).
  simpl. set (b := <[_ := c]> (buffer q)).
  set (q1 := mk b (wrapping_add (write_pos q) 1) (read_pos q)).
  assert (held q1 = held q + 1) as Eh1.
  { unfold held, wrapping_sub, wrapping_add in *. simpl. lia. }
  assert (contents q1 = contents q ++ [c]) as Ec.
  { unfold contents. rewrite Eh1. replace (N.to_nat (held q + 1)) with (S (N.to_nat (held q))) by lia.
    rewrite seq_S, fmap_app. f_equal.
    - apply list_fmap_ext. intros i k Hk. apply lookup_seq in Hk as [-> Hk]. unfold slot. simpl.
      unfold b. rewrite list_lookup_total_insert_ne; [done|]. unfold KEYBOARD_QUEUE_SIZE in *. rewrite Hwrap. lia.
    - simpl. f_equal. unfold slot. simpl. unfold b. rewrite Hwrap.
      replace (N.to_nat ((read_pos q + N.of_nat (N.to_nat (held q))) mod KEYBOARD_QUEUE_SIZE))
        with (N.to_nat ((read_pos q + held q) mod 2 ^ 64 mod KEYBOARD_QUEUE_SIZE)) by (unfold KEYBOARD_QUEUE_SIZE; lia).
      apply list_lookup_total_insert_eq. unfold KEYBOARD_QUEUE_SIZE. lia. }
  assert (length b = 256%nat) as Hlb by (unfold b; by rewrite length_insert).
  unfold update_field. simpl. fold q1. change (wrapping_sub _ (read_pos q)) with (held q1). rewrite Eh1.
  destruct (N.leb_spec KEYBOARD_QUEUE_SIZE (held q + 1)) as [Hfull|Hroom]; unfold KEYBOARD_QUEUE_SIZE in *.
  - rewrite bool_decide_true by lia. eexists. split; [done|].
    assert (held (mk b (wrapping_add (write_pos q) 1) (wrapping_add (read_pos q) 1)) = held q) as Eh2.
    { unfold held, wrapping_sub, wrapping_add in *. simpl. lia. }
    split_and!; [|done|].
    + split; simpl; [done|unfold wrapping_add; lia..|lia].
    + destruct (contents q) as [|x l] eqn:El.
      { apply (f_equal length) in El. rewrite contents_length in El. simpl in El. lia. }
      simpl. simpl in Ec. revert Ec. unfold contents. rewrite Eh1, Eh2.
      replace (N.to_nat (held q + 1)) with (S (N.to_nat (held q))) by lia. intros Ec. simpl in Ec. injection Ec as _ Ec.
      rewrite <- Ec. rewrite <- fmap_S_seq, <- list_fmap_compose. apply list_fmap_ext. intros i k _.
      simpl. unfold slot, wrapping_add. simpl. f_equal. unfold KEYBOARD_QUEUE_SIZE. lia.
  - rewrite bool_decide_false by lia. eexists. split; [done|]. split_and!; [|done|done].
    split; simpl; [done|unfold wrapping_add; lia|done|]. fold q1. lia.
Qed.

Lemma pop_spec q : wf q → ∃ q',
  pop q = Return (head (contents q), q') ∧ wf q' ∧ contents q' = tail (contents q).
Proof.
  intros Hwf. unfold pop. pose proof (held_wraps q Hwf) as Hw. destruct (N.eqb_spec (read_pos q) (write_pos q)) as [E|E].
  - assert (held q = 0) as E0. { destruct Hwf. unfold held, wrapping_sub. rewrite E. lia. }
    exists q. assert (contents q = []) as -> by (unfold contents; by rewrite E0). done.
  - assert (0 < held q) as Hpos. { destruct Hwf. unfold held, wrapping_sub in *. lia. }
    destruct (take_oldest q Hwf Hpos) as (x & -> & Hwf' & _ & ->). simpl. by eexists.
Qed.

(** *** The abstract queue

    A list of at most 255 codes; a push on a full one drops the oldest. *)
Inductive queue_op := Push (scancode : N) | Pop.
Definition spec_step (l : list N) (o : queue_op) : (bool + option N) * list N :=
  match o with
  | Push c => (inl (bool_decide (length l = 255%nat)),
               (if bool_decide (length l = 255%nat) then tail l else l) ++ [c])
  | Pop => (inr (head l), tail l)
  end.
Definition queue_step (q : queue) (o : queue_op) : outcome ((bool + option N) * queue) :=
  match o with
  | Push c => '(dropped, q) ← push c q; Return (inl dropped, q)
  | Pop => '(x, q) ← pop q; Return (inr x, q)
  end.
Fixpoint spec_run (l : list N) (ops : list queue_op) : list (bool + option N) * list N :=
  match ops with
  | [] => ([], l)
  | o :: ops => let '(r, l) := spec_step l o in let '(rs, l) := spec_run l ops in (r :: rs, l)
  end.
Fixpoint queue_run (q : queue) (ops : list queue_op) : outcome (list (bool + option N) * queue) :=
  match ops with
  | [] => Return ([], q)
  | o :: ops => '(r, q) ← queue_step q o; '(rs, q) ← queue_run q ops; Return (r :: rs, q)
  end.

Lemma queue_step_spec q o : wf q → ∃ q', queue_step q o = Return ((spec_step (contents q) o).1, q') ∧
  wf q' ∧ contents q' = (spec_step (contents q) o).2.
Proof.
  intros Hwf. destruct o as [c|]; simpl.
  - destruct (push_spec c q Hwf) as (q' & -> & Hwf' & _ & Hc). simpl. exists q'.
    assert (bool_decide (length (contents q) = 255%nat) = bool_decide (held q = 255)) as ->; [|done].
    apply bool_decide_ext. rewrite contents_length. lia.
  - destruct (pop_spec q Hwf) as (q' & -> & Hwf' & Hc). simpl. by exists q'.
Qed.

Lemma new_wf : wf new ∧ contents new = [].
Proof. split; [|done]. split; by vm_compute. Qed.

(** The keyboard queue is a first-in first-out queue of 255 scan codes that drops the
    oldest code when it is full: every sequence of pushes and pops on it returns, with the
    answers of the abstract queue, also when the 64-bit positions wrap around. *)
Theorem keyboard_queue_is_dropping_fifo q ops : wf q →
  ∃ q', queue_run q ops = Return ((spec_run (contents q) ops).1, q') ∧
    wf q' ∧ contents q' = (spec_run (contents q) ops).2.
Proof.
  revert q. induction ops as [|o ops IH]; intros q Hwf; simpl; [by exists q|].
  destruct (queue_step_spec q o Hwf) as (q1 & -> & Hwf1 & Hc1). simpl.
  destruct (IH q1 Hwf1) as (q' & -> & Hwf' & Hc'). simpl. exists q'. rewrite Hc1 in *.
  destruct (spec_step (contents q) o) as [r l] eqn:E1. simpl in *.
  by destruct (spec_run l ops) as [rs l'] eqn:E2.
Qed.

Lemma keyboard_queue_is_dropping_fifo_witness :
  ∃ q', queue_run (mk (replicate 256 0) (2 ^ 64 - 1) (2 ^ 64 - 1)) [Push 30; Push 48; Pop; Pop; Pop]
    = Return ([inl false; inl false; inr (Some 30); inr (Some 48); inr None], q').
Proof.
  destruct (keyboard_queue_is_dropping_fifo (mk (replicate 256 0) (2 ^ 64 - 1) (2 ^ 64 - 1))
    [Push 30; Push 48; Pop; Pop; Pop]) as (q' & E & _).
  - split; by vm_compute.
  - exists q'. exact E.
Defined.

(** *** Interrupts inside [pop] *)

Lemma interrupts_spec codes : ∀ q, wf q → held q + len codes ≤ 255 →
  ∃ q', interrupts codes q = Return q' ∧ wf q' ∧ read_pos q' = read_pos q ∧ contents q' = contents q ++ codes ∧
    held q' = held q + len codes.
Proof.
  unfold interrupts. induction codes as [|c codes IH]; intros q Hwf Hl; simpl.
  { exists q. change (len []) with 0. rewrite app_nil_r. split_and!; (done || lia). }
  unfold len in Hl. simpl in Hl. destruct (push_spec c q Hwf) as (q1 & -> & Hwf1 & Hr & Hc). simpl.
  rewrite bool_decide_false in Hr, Hc by lia.
  assert (held q1 = held q + 1) as Eh.
  { apply (f_equal length) in Hc. rewrite length_app, !contents_length in Hc. simpl in Hc. lia. }
  destruct (IH q1 Hwf1) as (q' & E & Hwf' & Hr' & Hc' & Hh'); [unfold len; lia|].
  exists q'. split_and!; try done; [congruence| |unfold len in *; simpl; lia].
  rewrite Hc', Hc. by rewrite <- app_assoc.
Qed.

(** [pop] may be interrupted anywhere while the queue has room: if the codes that wait
    and those that the keyboard interrupt pushes during the call fit into the queue, [pop]
    takes the oldest code that waited when it looked at the write position, and no code is
    lost, duplicated or reordered. *)
Theorem interrupted_pop_loses_nothing c1 c2 c3 q : wf q →
  held q + len c1 + len c2 + len c3 ≤ 255 →
  ∃ q', wf q' ∧
    match contents q ++ c1 with
    | [] => pop_during c1 c2 c3 q = Return (None, q') ∧ contents q' = c2
    | x :: rest => pop_during c1 c2 c3 q = Return (Some x, q') ∧ contents q' = rest ++ c2 ++ c3
    end.
Proof.
  intros Hwf Hl. unfold pop_during.
  destruct (interrupts_spec c1 q Hwf) as (q1 & -> & Hwf1 & Hr1 & Hc1 & Hh1); [lia|]. simpl.
  destruct (interrupts_spec c2 q1 Hwf1) as (q2 & -> & Hwf2 & Hr2 & Hc2 & Hh2); [lia|]. simpl.
  assert ((read_pos q =? write_pos q1) = bool_decide (held q1 = 0)) as ->.
  { pose proof (held_wraps q1 Hwf1). rewrite <- Hr1.
    destruct (N.eqb_spec (read_pos q1) (write_pos q1)); symmetry; [apply bool_decide_true|apply bool_decide_false];
      destruct Hwf1; unfold held, wrapping_sub in *; lia. }
  rewrite <- Hc1. case_bool_decide as E0.
  - exists q2. assert (contents q1 = []) as E1 by (unfold contents; by rewrite E0).
    rewrite E1 in *. by split_and!.
  - assert (0 < held q2) as Hpos by lia. destruct (take_oldest q2 Hwf2 Hpos) as (x & Hx & _ & _ & Hcx).
    rewrite Hr2, Hr1 in Hx. rewrite Hx. simpl.
    destruct (interrupts_spec c3 q2 Hwf2) as (q3 & -> & Hwf3 & Hr3 & Hc3 & Hh3); [lia|]. simpl.
    destruct (take_oldest q3 Hwf3) as (y & _ & Hwf4 & _ & Hcy); [lia|].
    rewrite Hr3, Hr2, Hr1 in Hwf4, Hcy. eexists. split; [exact Hwf4|].
    destruct (contents q1) as [|z rest] eqn:Ez.
    { apply (f_equal length) in Ez. rewrite contents_length in Ez. simpl in Ez. lia. }
    rewrite Hc2 in Hcx, Hc3. rewrite Hc3 in Hcy. simpl in *. injection Hcx as <- _. injection Hcy as _ Hcy.
    split; [done|]. by rewrite <- Hcy, app_assoc.
Qed.

Lemma interrupted_pop_loses_nothing_witness :
  ∃ q, interrupts [30; 48] new = Return q ∧
    fst <$> pop_during [46] [32] [18] q = Return (Some 30).
Proof.
  destruct (interrupts_spec [30; 48] new (proj1 new_wf)) as (q & E & Hwf & _ & Hc & Hh); [by vm_compute|].
  exists q. split; [done|].
  destruct (interrupted_pop_loses_nothing [46] [32] [18] q Hwf) as (q' & _ & H); [rewrite Hh; by vm_compute|].
  rewrite Hc in H. simpl in H. destruct H as [-> _]. reflexivity.
Defined.

(** When the queue is full, two interrupts between the loads of [pop] overwrite the slot it
    is about to read: it returns the newest code as the oldest one, which no order of the
    calls explains. *)
Theorem interrupted_pop_of_full_queue_reorders :
  (q ← interrupts (replicate 255 1) new; '(x, _) ← pop_during [] [2; 3] [] q; Return x) = Return (Some 3) ∧
  (q ← interrupts (replicate 255 1) new; '(x, _) ← pop q; Return x) = Return (Some 1) ∧
  (q ← interrupts (replicate 255 1 ++ [2; 3]) new; '(x, _) ← pop q; Return x) = Return (Some 1).
Proof. split_and!; by vm_compute. Qed.
End QueueSpec.

(** ** Scan codes

    The reference is the path through the hardware abstraction: [X86Ps2Keyboard::parse_scancode],
    [KeyboardTranslator::translate] and the characters of the US layout. *)

Module ParserSpec.
Import Ps2ParserState.

(** Plain and shifted character of a key. *)
Definition us_layout (c : KeyCode.t) : option (N * N) :=
  match c with
  | KeyCode.A => Some (97, 65) | KeyCode.B => Some (98, 66) | KeyCode.C => Some (99, 67)
  | KeyCode.D => Some (100, 68) | KeyCode.E => Some (101, 69) | KeyCode.F => Some (102, 70)
  | KeyCode.G => Some (103, 71) | KeyCode.H => Some (104, 72) | KeyCode.I => Some (105, 73)
  | KeyCode.J => Some (106, 74) | KeyCode.K => Some (107, 75) | KeyCode.L => Some (108, 76)
  | KeyCode.M => Some (109, 77) | KeyCode.N => Some (110, 78) | KeyCode.O => Some (111, 79)
  | KeyCode.P => Some (112, 80) | KeyCode.Q => Some (113, 81) | KeyCode.R => Some (114, 82)
  | KeyCode.S => Some (115, 83) | KeyCode.T => Some (116, 84) | KeyCode.U => Some (117, 85)
  | KeyCode.V => Some (118, 86) | KeyCode.W => Some (119, 87) | KeyCode.X => Some (120, 88)
  | KeyCode.Y => Some (121, 89) | KeyCode.Z => Some (122, 90)
  | KeyCode.Num1 => Some (49, 33) | KeyCode.Num2 => Some (50, 64) | KeyCode.Num3 => Some (51, 35)
  | KeyCode.Num4 => Some (52, 36) | KeyCode.Num5 => Some (53, 37) | KeyCode.Num6 => Some (54, 94)
  | KeyCode.Num7 => Some (55, 38) | KeyCode.Num8 => Some (56, 42) | KeyCode.Num9 => Some (57, 40)
  | KeyCode.Num0 => Some (48, 41) | KeyCode.Minus => Some (45, 95) | KeyCode.Equal => Some (61, 43)
  | KeyCode.LeftBracket => Some (91, 123) | KeyCode.RightBracket => Some (93, 125)
  | KeyCode.Semicolon => Some (59, 58) | KeyCode.Quote => Some (39, 34) | KeyCode.Grave => Some (96, 126)
  | KeyCode.Backslash => Some (92, 124) | KeyCode.Comma => Some (44, 60) | KeyCode.Period => Some (46, 62)
  | KeyCode.Slash => Some (47, 63) | KeyCode.Space => Some (32, 32) | KeyCode.Enter => Some (10, 10)
  | KeyCode.Backspace => Some (8, 8) | KeyCode.Escape => Some (27, 27)
  | _ => None
  end.
(** The character of a key event: of a press, with control and P as the one combination. *)
Definition key_char (e : KeyEvent.t) : option N :=
  if KeyEvent.is_pressed e then
    if bool_decide (KeyEvent.code e = KeyCode.P) && Modifiers.is_ctrl (KeyEvent.modifiers e) then Some 16
    else cased (Modifiers.is_shift (KeyEvent.modifiers e)) <$> us_layout (KeyEvent.code e)
  else None.
(** One byte through the hardware abstraction: its state is the prefix flag and the modifiers. *)
Definition hal_char (byte : N) (st : bool * KeyboardTranslator.t) : option N * (bool * KeyboardTranslator.t) :=
  let '(ev, pending) := X86Ps2Keyboard.parse_scancode byte st.1 in
  match ev with
  | None => (None, (pending, st.2))
  | Some ev =>
      let '(key, tr) := KeyboardTranslator.translate ev st.2 in
      (key ≫= key_char, (pending, tr))
  end.
Fixpoint hal_process (codes : list N) (st : bool * KeyboardTranslator.t) : list N :=
  match codes with
  | [] => []
  | c :: codes => let '(o, st) := hal_char c st in option_list o ++ hal_process codes st
  end.

(** A stream in which no right shift occurs and no prefix comes before a shift or a control
    code: the two modifiers each have one key. *)
Fixpoint one_of_each (prefixed : bool) (codes : list N) : bool :=
  match codes with
  | [] => true
  | c :: codes =>
      let code := N.land c 0x7F in
      (c <? 256) && negb (code =? 0x36) &&
      (if prefixed then negb (code =? 0x2A) && negb (code =? 0x1D) else true) &&
      one_of_each (c =? 0xE0) codes
  end.

(** The states that correspond, as a function of the flags. *)
Definition parser (pending shift ctrl : bool) : Ps2ParserState.t := mk pending shift ctrl.
Definition hal (pending shift ctrl : bool) (rest : bool * bool * bool * bool) : bool * KeyboardTranslator.t :=
  let '(la, ra, lm, rm) := rest in
  (pending, KeyboardTranslator.mk (ModifierState.mk shift false ctrl false la ra lm rm)).

#[local] Instance option_N_eq : EqDecision (option N) := _.

(** The claim for one byte and one state, as a computation. *)
Definition agree_at (c : N) (pending shift ctrl : bool) (rest : bool * bool * bool * bool) : bool :=
  let '(o1, p) := process_scancode c (parser pending shift ctrl) in
  let '(o2, st) := hal_char c (hal pending shift ctrl rest) in
  let m := KeyboardTranslator.modifiers st.2 in
  bool_decide (o1 = o2) && eqb (pending_e0 p) st.1 && eqb (shift_pressed p) (ModifierState.left_shift m)
  && eqb (ctrl_pressed p) (ModifierState.left_ctrl m) && negb (ModifierState.right_shift m)
  && negb (ModifierState.right_ctrl m) && eqb (pending_e0 p) (c =? 0xE0).
Definition bools : list bool := [false; true].
Definition rests : list (bool * bool * bool * bool) :=
  la ← bools; ra ← bools; lm ← bools; rm ← bools; [(la, ra, lm, rm)].
Definition allowed (pending : bool) (c : N) : bool :=
  let code := N.land c 0x7F in
  negb (code =? 0x36) && (if pending then negb (code =? 0x2A) && negb (code =? 0x1D) else true).

Lemma agree_everywhere :
  forallb (λ c, forallb (λ pending, forallb (λ shift, forallb (λ ctrl, forallb (λ rest,
    implb (allowed pending (N.of_nat c)) (agree_at (N.of_nat c) pending shift ctrl rest))
    rests) bools) bools) bools) (seq 0 256) = true.
Proof. by vm_compute. Qed.

Lemma elem_of_bools b : b ∈ bools.
Proof. destruct b; [right; left|left]. Qed.
Lemma forallb_elem {A} (f : A → bool) l x : forallb f l = true → x ∈ l → f x = true.
Proof. rewrite forallb_forall. intros H Hx. apply H. by apply list_elem_of_In. Qed.

Lemma agree_step c pending shift ctrl rest : c < 256 → allowed pending c = true →
  agree_at c pending shift ctrl rest = true.
Proof.
  intros Hc Ha. assert (N.to_nat c ∈ seq 0 256) as Hin by (apply elem_of_seq; lia).
  pose proof (forallb_elem _ _ _ agree_everywhere Hin) as H1. cbv beta in H1.
  pose proof (forallb_elem _ _ _ H1 (elem_of_bools pending)) as H2. cbv beta in H2.
  pose proof (forallb_elem _ _ _ H2 (elem_of_bools shift)) as H3. cbv beta in H3.
  pose proof (forallb_elem _ _ _ H3 (elem_of_bools ctrl)) as H4. cbv beta in H4.
  assert (rest ∈ rests) as Hrest.
  { destruct rest as [[[[] []] []] []]; vm_compute; repeat (apply elem_of_cons; (by left) || right). }
  pose proof (forallb_elem _ _ _ H4 Hrest) as H5. cbv beta in H5.
  rewrite N2Nat.id, Ha in H5. exact H5.
Qed.

(** The step as a simulation. *)
Lemma agree_simulates c pending shift ctrl rest : c < 256 → allowed pending c = true →
  ∃ o shift' ctrl' rest',
    process_scancode c (parser pending shift ctrl) = (o, parser (c =? 0xE0) shift' ctrl') ∧
    hal_char c (hal pending shift ctrl rest) = (o, hal (c =? 0xE0) shift' ctrl' rest').
Proof.
  intros Hc Ha. pose proof (agree_step c pending shift ctrl rest Hc Ha) as H. unfold agree_at in H.
  destruct (process_scancode c _) as [o1 [p1 p2 p3]]. destruct (hal_char c _) as [o2 [pe [m]]]. simpl in H.
  rewrite !andb_true_iff, bool_decide_eq_true, !eqb_true_iff, !negb_true_iff in H.
  destruct H as ((((((-> & <-) & ->) & ->) & Hrs) & Hrc) & ->).
  destruct m as [ls rs lc rc la ra lm rm]. simpl in *. subst.
  by exists o2, ls, lc, (la, ra, lm, rm).
Qed.

(** The bare-metal scan-code parser and the keyboard path of the hardware abstraction
    read the same text: on every stream of bytes in which shift and control are each one key
    (no right shift, no prefixed shift or control), the characters the parser produces are
    those of the key events the driver and the translator produce, in the US layout. *)
Theorem parsers_agree codes : one_of_each false codes = true →
  (process codes Ps2ParserState.new).1 = hal_process codes (false, KeyboardTranslator.new).
Proof.
  assert (∀ pending shift ctrl rest, one_of_each pending codes = true →
    (process codes (parser pending shift ctrl)).1 = hal_process codes (hal pending shift ctrl rest)) as Hall.
  { induction codes as [|c codes IH]; intros pending shift ctrl rest Hok; [done|]. simpl in Hok.
    rewrite !andb_true_iff in Hok. destruct Hok as (((Hc & H36) & Hp) & Hrest). apply N.ltb_lt in Hc.
    destruct (agree_simulates c pending shift ctrl rest Hc) as (o & s' & c' & r' & E1 & E2).
    { unfold allowed. by rewrite H36, Hp. }
    cbn [process hal_process]. rewrite E1, E2. specialize (IH (c =? 0xE0) s' c' r' Hrest).
    destruct (process codes _) as [out p]. simpl in *. by rewrite IH. }
  intros Hok. exact (Hall false false false (false, false, false, false) Hok).
Qed.

Lemma parsers_agree_witness :
  one_of_each false [0x2A; 0x23; 0xAA; 0x17; 0xE0; 0x48; 0x1C] = true ∧
  hal_process [0x2A; 0x23; 0xAA; 0x17; 0xE0; 0x48; 0x1C] (false, KeyboardTranslator.new) = [72; 105; 10].
Proof.
  split; [by vm_compute|].
  rewrite <- (parsers_agree [0x2A; 0x23; 0xAA; 0x17; 0xE0; 0x48; 0x1C]); by vm_compute.
Defined.

(** With both shift keys down, releasing one of them ends shift in the bare-metal parser and
    not in the hardware abstraction. *)
Theorem releasing_one_shift_key_unshifts :
  (process [0x2A; 0x36; 0xB6; 0x1E] Ps2ParserState.new).1 = [97] ∧
  hal_process [0x2A; 0x36; 0xB6; 0x1E] (false, KeyboardTranslator.new) = [65].
Proof. split; by vm_compute. Qed.
End ParserSpec.

(** ** The demo editor's buffer *)

Module DemoSpec.
Import DemoEditor.

Record wf (e : DemoEditor.t) : Prop := {
  wf_buffer : length (buffer e) = N.to_nat 1024;
  wf_cursor : cursor e ≤ len e;
  wf_len : len e ≤ 1024
}.

Lemma shift_right_at b i x : b !! i = Some x → (S i < length b)%nat →
  shift_right b i = Return (<[S i := x]> b).
Proof.
  intros Hx Hl. unfold shift_right. rewrite (proj2 (slice_get_Return b (N.of_nat i) x)) by (by rewrite Nat2N.id).
  simpl. apply slice_set_Return. replace (N.to_nat (N.of_nat i + 1)) with (S i) by lia. done.
Qed.
Lemma shift_left_at b i x : b !! S i = Some x → shift_left b i = Return (<[i := x]> b).
Proof.
  intros Hx. unfold shift_left. rewrite (proj2 (slice_get_Return b (N.of_nat i + 1) x)) by
    (by replace (N.to_nat (N.of_nat i + 1)) with (S i) by lia).
  simpl. apply slice_set_Return. rewrite Nat2N.id. apply lookup_lt_Some in Hx. split; [lia|done].
Qed.
Lemma shift_right_run p a x r :
  fold_outcome shift_right (reverse (seq (length p) (length a))) (p ++ a ++ x :: r)
  = Return (p ++ default x (head a) :: a ++ r).
Proof.
  revert x r. induction a as [|y a IH] using rev_ind; intros x r; [done|].
  rewrite length_app, Nat.add_1_r, seq_S, reverse_snoc. cbn [fold_outcome].
  rewrite <- app_assoc. cbn [app]. rewrite (shift_right_at _ _ y).
  2: { rewrite lookup_app_r by lia. replace (length p + length a - length p)%nat with (length a) by lia.
       by rewrite lookup_app_r, Nat.sub_diag by lia. }
  2: { rewrite !length_app. simpl. lia. }
  rewrite insert_app_r_alt by lia. rewrite insert_app_r_alt by lia.
  replace (S (length p + length a) - length p - length a)%nat with 1%nat by lia.
  simpl. rewrite IH. f_equal. f_equal. rewrite <- app_assoc. by destruct a.
Qed.
Lemma shift_left_run a : ∀ p y r,
  fold_outcome shift_left (seq (length p) (length a)) (p ++ y :: a ++ r)
  = Return (p ++ a ++ default y (last a) :: r).
Proof.
  induction a as [|z a IH]; intros p y r; [done|]. cbn [length seq fold_outcome].
  rewrite (shift_left_at _ _ z).
  2: { rewrite lookup_app_r by lia. by replace (S (length p) - length p)%nat with 1%nat by lia. }
  rewrite insert_app_r_alt by lia. rewrite Nat.sub_diag.
  simpl. specialize (IH (p ++ [z]) z r). rewrite length_app, Nat.add_1_r, <- !app_assoc in IH. simpl in IH.
  rewrite IH. rewrite last_cons. by destruct (last a).
Qed.

(** A buffer as the text before and after the cursor. *)
Lemma split_text e : wf e → ∃ p a r, buffer e = p ++ a ++ r ∧ length p = N.to_nat (cursor e) ∧
  length a = (N.to_nat (len e) - N.to_nat (cursor e))%nat ∧ get_text e = p ++ a.
Proof.
  intros [Hb Hc Hl]. exists (take (N.to_nat (cursor e)) (get_text e)), (drop (N.to_nat (cursor e)) (get_text e)),
    (drop (N.to_nat (len e)) (buffer e)).
  unfold get_text. rewrite app_assoc, take_drop, take_drop, length_drop, !length_take. split_and!; (done || lia).
Qed.

(** The demo editor edits a text at its cursor: typing a character inserts it before the
    cursor while the text is shorter than 1024 bytes and does nothing at that length,
    backspace removes the byte before the cursor, and no keystroke panics or writes outside
    the buffer. *)
Theorem demo_editor_edits_at_cursor e ch : wf e →
  ∃ e', type_char e ch = Return e' ∧ wf e' ∧
    (let before := take (N.to_nat (cursor e)) (get_text e) in
     let after := drop (N.to_nat (cursor e)) (get_text e) in
     if ch =? 8 then
       get_text e' = take (length before - 1) before ++ after ∧ cursor e' = N.pred (cursor e)
     else if len e <? 1024 then
       get_text e' = before ++ ch :: after ∧ cursor e' = cursor e + 1
     else e' = e).
Proof.
  intros Hwf. destruct (split_text e Hwf) as (p & a & r & Eb & Hp & Ha & Et). destruct Hwf as [Hb Hc Hl].
  rewrite Et. rewrite <- Hp, take_app_length, drop_app_length. cbv zeta. unfold type_char.
  destruct (N.eqb_spec ch 8) as [->|Hch].
  - unfold delete_char. destruct (N.ltb_spec 0 (cursor e)) as [Hpos|Hz]; last first.
    { exists e. split_and!; try done; [|lia]. rewrite Et. assert (cursor e = 0) as E0 by lia. rewrite E0 in Hp.
      by destruct p. }
    unfold update_field. simpl. unfold sub_u64, checked_sub. rewrite (proj2 (N.leb_le 1 (len e))) by lia. simpl.
    destruct (exists_last (l := p)) as (p' & y & ->). { intros ->. simpl in Hp. lia. }
    rewrite length_app in *. simpl in Hp. rewrite Eb, <- app_assoc. cbn [app].
    replace (N.to_nat (N.pred (cursor e))) with (length p') by lia.
    replace (N.to_nat (len e - 1) - length p')%nat with (length a) by lia.
    rewrite shift_left_run. simpl. rewrite (proj2 (N.ltb_lt 0 (len e))) by lia. eexists. split; [done|].
    rewrite Eb in Hb. rewrite !length_app in Hb. simpl in Hb. split; [|split].
    + split; simpl; [rewrite !length_app; simpl; lia|lia|lia].
    + unfold get_text. simpl. replace (length p' + 1 - 1)%nat with (length p') by lia. rewrite take_app_length, app_assoc.
      replace (N.to_nat (N.pred (len e))) with (length (p' ++ a)) by (rewrite length_app; lia). apply take_app_length.
    + done.
  - unfold insert_char. unfold Prelude.len. rewrite Hb, N2Nat.id. destruct (N.ltb_spec (len e) 1024) as [Hroom|].
    2: { by exists e. }
    destruct r as [|x r]. { rewrite Eb, !length_app in Hb. simpl in Hb. lia. }
    assert ((if cursor e <? len e
         then fold_outcome shift_right (reverse (seq (N.to_nat (cursor e)) (N.to_nat (len e) - N.to_nat (cursor e)))) (buffer e)
         else Return (buffer e)) = Return (p ++ default x (head a) :: a ++ r)) as ->.
    { rewrite Eb, <- Ha, <- Hp. destruct (N.ltb_spec (cursor e) (len e)); [apply shift_right_run|].
      destruct a; [done|]. simpl in Ha. lia. }
    simpl. rewrite (proj2 (slice_set_Return _ (cursor e) ch (p ++ ch :: a ++ r))).
    2: { rewrite length_app. simpl. split; [lia|]. rewrite insert_app_r_alt by lia. by rewrite Hp, Nat.sub_diag. }
    simpl. eexists. split; [done|]. rewrite Eb in Hb. rewrite !length_app in Hb. simpl in Hb. split; [|split].
    + split; simpl; [rewrite !length_app; simpl; rewrite length_app; lia|lia|lia].
    + unfold get_text. simpl.
      replace (N.to_nat (N.succ (len e))) with (length (p ++ ch :: a)) by (rewrite length_app; simpl; lia).
      rewrite (app_assoc p (ch :: a) r : p ++ ch :: a ++ r = _). apply take_app_length.
    + simpl. lia.
Qed.

Lemma demo_editor_edits_at_cursor_witness :
  wf DemoEditor.new ∧ ∃ e, type_char DemoEditor.new 97 = Return e ∧ get_text e = [97].
Proof.
  assert (wf DemoEditor.new) as Hwf by (split; by vm_compute). split; [exact Hwf|].
  destruct (demo_editor_edits_at_cursor DemoEditor.new 97 Hwf) as (e & E & _ & Ht & _).
  exists e. split; [exact E|exact Ht].
Defined.
End DemoSpec.

(** ** The prompt *)

Module PromptSpec.
(** The visible part of the command is its end, it fits beside the prefix, and the cursor is
    on the line; the call never panics. *)
Theorem prompt_view_fits cmd cols prefix_len : cols ≤ u64_max → 0 < cols →
  ∃ start slice cursor, prompt_view cmd cols prefix_len = Return (start, slice, cursor) ∧
    cursor < cols ∧
    (prefix_len < cols → slice = drop (N.to_nat start) cmd ∧ prefix_len + len slice ≤ cols ∧
      (len cmd ≤ cols - prefix_len → slice = cmd)).
Proof.
  intros Hmax Hpos. unfold prompt_view, saturating_sub.
  destruct (N.eqb_spec cols 0); [lia|]. destruct (N.leb_spec cols prefix_len).
  { eexists _, _, _. split; [done|]. split; [lia|]. intros; lia. }
  destruct (N.eqb_spec (cols - prefix_len) 0); [lia|].
  destruct (N.ltb_spec (cols - prefix_len) (len cmd)).
  - rewrite (proj2 (add_u64_Return _ _ (prefix_len + (cols - prefix_len)))) by lia. simpl.
    eexists _, _, _. split; [done|]. destruct (N.leb_spec cols (prefix_len + (cols - prefix_len))); split; try lia;
      intros _; (split_and!; [done| |intros; lia]); unfold len in *; rewrite length_drop; lia.
  - rewrite (proj2 (add_u64_Return _ _ (prefix_len + len cmd))) by lia. simpl.
    eexists _, _, _. split; [done|]. destruct (N.leb_spec cols (prefix_len + len cmd)); split; try lia;
      intros _; by (split_and!; [|lia|]).
Qed.
End PromptSpec.

(** ** Interrupt descriptors and controllers *)

Module IdtSpec.
(** The three parts of the descriptor are the address of the handler. *)
Theorem handler_address_round_trips addr sel e : addr < 2 ^ 64 →
  let d := IdtEntry.set_handler addr sel e in
  IdtEntry.offset_low d + N.shiftl (IdtEntry.offset_mid d) 16 + N.shiftl (IdtEntry.offset_high d) 32 = addr ∧
  IdtEntry.offset_low d < 2 ^ 16 ∧ IdtEntry.offset_mid d < 2 ^ 16 ∧ IdtEntry.offset_high d < 2 ^ 32.
Proof.
  intros Ha. simpl. change 0xFFFF with (N.ones 16). change 0xFFFFFFFF with (N.ones 32).
  rewrite !N.land_ones, !N.shiftr_div_pow2, !N.shiftl_mul_pow2. lia.
Qed.

(** Initialising the interrupt controllers masks every line; unmasking the timer and the
    keyboard afterwards leaves exactly these two lines open. *)
Theorem only_timer_and_keyboard_are_unmasked :
  (p ← init_pic FakePortIo.new;
   p ← unmask_timer_irq (FakePortIo.script_reads [(0x21, 0xFF); (0x21, 0xFE)] p);
   p ← unmask_keyboard_irq p;
   Return (last (filter (λ w, w.1 = 0x21) (FakePortIo.writes p)))) = Return (Some (0x21, 0xFC)).
Proof. by vm_compute. Qed.
End IdtSpec.
