(* ===== verification/BareKernel.v ===== *)
(** * The bare-metal kernel

    [kernel_bootstrap/src/main.rs]: messages of fixed size, ring-buffer channels, the
    cooperative scheduler, and the kernel with its two tasks, the command service and the
    console service, in the build for the machine ([not(test)]).  The serial port and the
    tick counter, which interrupts advance, are an interface. *)

From S2P Require Import Prelude Debug Editor Input Text BareMem BareIo.
Open Scope string_scope.
Open Scope list_scope.
Open Scope N_scope.

Definition SChannelId := N.
(* kernel_bootstrap/src/main.rs:2877-2882 CHANNEL_CAPACITY, COMMAND_MAX, RESPONSE_MAX, ERROR_MAX, MAX_TASKS, MAX_CHANNELS *)
Definition CHANNEL_CAPACITY : N := 8.
(* kernel_bootstrap/src/main.rs:2878-2878 COMMAND_MAX *)
Definition COMMAND_MAX : N := 64.
(* kernel_bootstrap/src/main.rs:2879-2879 RESPONSE_MAX *)
Definition RESPONSE_MAX : N := 256.
(* kernel_bootstrap/src/main.rs:2880-2880 ERROR_MAX *)
Definition ERROR_MAX : N := 96.
(* kernel_bootstrap/src/main.rs:2881-2881 MAX_TASKS *)
Definition MAX_TASKS : N := 8.
(* kernel_bootstrap/src/main.rs:2882-2882 MAX_CHANNELS *)
Definition MAX_CHANNELS : N := 16.

(** [array[..n].copy_from_slice(&data[..n])]. *)
Definition copy_prefix (n : N) (data array : list N) : list N :=
  take (N.to_nat n) data ++ drop (N.to_nat n) array.

Module FixedBuffer.
(* kernel_bootstrap/src/main.rs:3827-3830 FixedBuffer *)
Record t := mk { buf : list N; len : N }.
(* kernel_bootstrap/src/main.rs:3833-3838 FixedBuffer::new *)
Definition new (capacity : N) : t := mk (replicate (N.to_nat capacity) 0) 0.
(* kernel_bootstrap/src/main.rs:3840-3842 FixedBuffer::as_bytes *)
Definition as_bytes (b : t) : list N := take (N.to_nat (len b)) (buf b).
(* kernel_bootstrap/src/main.rs:3846-3853 Write for FixedBuffer::write_str *)
Definition write_str (s : list N) (b : t) : outcome t :=
  let available := saturating_sub (Prelude.len (buf b)) (len b) in
  let n := N.min (Prelude.len s) available in
  if len b + n <=? Prelude.len (buf b)
  then Return (mk (take (N.to_nat (len b)) (buf b) ++ take (N.to_nat n) s
                   ++ drop (N.to_nat (len b + n)) (buf b)) (len b + n))
  else Panic.
(** [writeln!]: the pieces of the text are written in turn, which is writing the text. *)
Definition writeln (s : string) (b : t) : outcome t := write_str (Utf8.bytes s ++ [10]) b.
End FixedBuffer.

(** ** Messages *)

Module BootInfo.
(** The address of the frame buffer is a pointer; nothing here follows it. *)
(* kernel_bootstrap/src/main.rs:2954-2967 BootInfo *)
Record t := mk {
  hhdm_offset : option N;
  kernel_phys : option N;
  kernel_virt : option N;
  mem_entries : N;
  mem_total_kib : N;
  mem_usable_kib : N;
  framebuffer_addr : option N;
  framebuffer_width : N;
  framebuffer_height : N;
  framebuffer_pitch : N;
  framebuffer_bpp : N
}.
(* kernel_bootstrap/src/main.rs:2970-2984 BootInfo::empty *)
Definition empty : t := mk None None None 0 0 0 None 0 0 0 0.
End BootInfo.

Module SchemaVersionB.
(* kernel_bootstrap/src/main.rs:3002-3012 SchemaVersion *)
Record t := new { major : N; minor : N }.
(* kernel_bootstrap/src/main.rs:3014-3014 COMMAND_SCHEMA_VERSION *)
Definition COMMAND_SCHEMA_VERSION : t := new 1 0.
End SchemaVersionB.

Module CommandErrorB.
(* kernel_bootstrap/src/main.rs:3016-3022 CommandErrorCode *)
Inductive code_t := InvalidCommand | InvalidArguments | Internal | ServiceUnavailable.
(* kernel_bootstrap/src/main.rs:3024-3029 CommandError *)
Record t := mk { code : code_t; len : N; message : list N }.
(* kernel_bootstrap/src/main.rs:3042-3047 CommandError::write_message *)
Definition write_message (bytes : list N) (e : t) : t :=
  let n := N.min (Prelude.len bytes) ERROR_MAX in
  mk (code e) n (copy_prefix n bytes (message e)).
(* kernel_bootstrap/src/main.rs:3032-3040 CommandError::new *)
Definition new (code : code_t) (message : string) : t :=
  write_message (Utf8.bytes message) (mk code 0 (replicate (N.to_nat ERROR_MAX) 0)).
(** The bytes of the text, if they are UTF-8. *)
(* kernel_bootstrap/src/main.rs:3049-3051 CommandError::as_str *)
Definition as_str (e : t) : option (list N) :=
  let b := take (N.to_nat (len e)) (message e) in
  match Utf8.from_utf8 b with Some _ => Some b | None => None end.
End CommandErrorB.

Module CommandRequestB.
(* kernel_bootstrap/src/main.rs:3060-3067 CommandRequest *)
Record t := mk {
  version : SchemaVersionB.t; request_id : N; reply_channel : SChannelId; len : N; data : list N
}.
(* kernel_bootstrap/src/main.rs:3070-3087 CommandRequest::from_bytes *)
Definition from_bytes (line : list N) (request_id : N) (reply_channel : SChannelId) : option t :=
  if COMMAND_MAX <? Prelude.len line then None
  else
    Some (mk SchemaVersionB.COMMAND_SCHEMA_VERSION request_id reply_channel (Prelude.len line)
            (copy_prefix (Prelude.len line) line (replicate (N.to_nat COMMAND_MAX) 0))).
(* kernel_bootstrap/src/main.rs:3089-3091 CommandRequest::as_str *)
Definition as_str (r : t) : option Str.t := Utf8.from_utf8 (take (N.to_nat (len r)) (data r)).
End CommandRequestB.

Module CommandResponseB.
(* kernel_bootstrap/src/main.rs:3053-3058 CommandStatus *)
Inductive status_t := StatusOk | StatusError (e : CommandErrorB.t).
(* kernel_bootstrap/src/main.rs:3094-3101 CommandResponse *)
Record t := mk {
  version : SchemaVersionB.t; correlation_id : N; status : status_t; len : N; output : list N
}.
(* kernel_bootstrap/src/main.rs:3126-3130 CommandResponse::write_output *)
Definition write_output (data : list N) (r : t) : t :=
  let n := N.min (Prelude.len data) RESPONSE_MAX in
  mk (version r) (correlation_id r) (status r) n (copy_prefix n data (output r)).
(* kernel_bootstrap/src/main.rs:3104-3114 CommandResponse::ok *)
Definition ok (correlation_id : N) (out : FixedBuffer.t) : t :=
  write_output (FixedBuffer.as_bytes out)
    (mk SchemaVersionB.COMMAND_SCHEMA_VERSION correlation_id StatusOk 0 (replicate (N.to_nat RESPONSE_MAX) 0)).
(* kernel_bootstrap/src/main.rs:3116-3124 CommandResponse::error *)
Definition error (correlation_id : N) (e : CommandErrorB.t) : t :=
  mk SchemaVersionB.COMMAND_SCHEMA_VERSION correlation_id (StatusError e) 0 (replicate (N.to_nat RESPONSE_MAX) 0).
(* kernel_bootstrap/src/main.rs:3132-3134 CommandResponse::output_str *)
Definition output_str (r : t) : option (list N) :=
  let b := take (N.to_nat (len r)) (output r) in
  match Utf8.from_utf8 b with Some _ => Some b | None => None end.
End CommandResponseB.

Module KernelMessage.
(* kernel_bootstrap/src/main.rs:3136-3142 KernelMessage *)
Inductive t :=
| Empty
| CommandRequest (r : CommandRequestB.t)
| CommandResponse (r : CommandResponseB.t).
(* kernel_bootstrap/src/main.rs:3145-3147 KernelMessage::empty *)
Definition empty : t := Empty.
End KernelMessage.

(** ** Channels *)

Module ChannelError.
(* kernel_bootstrap/src/main.rs:3908-3910 ChannelError *)
Inductive t := Full.
End ChannelError.

Module Channel.
(* kernel_bootstrap/src/main.rs:3856-3862 Channel *)
Record t := mk { queue : list KernelMessage.t; head : N; tail : N; full : bool }.
#[global] Instance rebuild_t : Rebuild t := λ c, mk (queue c) (head c) (tail c) (full c).
(* kernel_bootstrap/src/main.rs:3865-3872 Channel::new *)
Definition new : t := mk (replicate (N.to_nat CHANNEL_CAPACITY) KernelMessage.empty) 0 0 false.
(* kernel_bootstrap/src/main.rs:3874-3879 Channel::reset *)
Definition reset (c : t) : t := mk (replicate (N.to_nat CHANNEL_CAPACITY) KernelMessage.empty) 0 0 false.
(* kernel_bootstrap/src/main.rs:3881-3891 Channel::send *)
Definition send (msg : KernelMessage.t) (c : t) : outcome (result unit ChannelError.t * t) :=
  if full c then Return (Err ChannelError.Full, c)
  else
    q ← slice_set (queue c) (tail c) msg;
    let tail' := (tail c + 1) mod CHANNEL_CAPACITY in
    let c := c <| queue := q |> <| tail := tail' |> in
    Return (Ok tt, if tail' =? head c then c <| full := true |> else c).
(* kernel_bootstrap/src/main.rs:3903-3905 Channel::is_empty *)
Definition is_empty (c : t) : bool := negb (full c) && (head c =? tail c).
(* kernel_bootstrap/src/main.rs:3893-3901 Channel::recv *)
Definition recv (c : t) : outcome (option KernelMessage.t * t) :=
  if is_empty c then Return (None, c)
  else
    msg ← slice_get (queue c) (head c);
    Return (Some msg, c <| head := (head c + 1) mod CHANNEL_CAPACITY |> <| full := false |>).
End Channel.

(** ** Scheduling *)

Module CooperativeScheduler.
(* kernel_bootstrap/src/main.rs:3194-3198 CooperativeScheduler *)
Record t := mk { order : list N; count : N; cursor : N }.
#[global] Instance rebuild_t : Rebuild t := λ s, mk (order s) (count s) (cursor s).
(* kernel_bootstrap/src/main.rs:3201-3207 CooperativeScheduler::new *)
Definition new : t := mk (replicate (N.to_nat MAX_TASKS) 0) 0 0.
(* kernel_bootstrap/src/main.rs:3209-3214 CooperativeScheduler::add_task *)
Definition add_task (id : N) (s : t) : outcome t :=
  if count s <? MAX_TASKS
  then o ← slice_set (order s) (count s) id; Return (s <| order := o |> <| count ::= N.succ |>)
  else Return s.
(* kernel_bootstrap/src/main.rs:3216-3223 CooperativeScheduler::next_task *)
Definition next_task (s : t) : outcome (option N * t) :=
  if count s =? 0 then Return (None, s)
  else
    id ← slice_get (order s) (cursor s);
    Return (Some id, s <| cursor := (cursor s + 1) mod count s |>).
End CooperativeScheduler.

Module TimeSlice.
(* kernel_bootstrap/src/main.rs:3226-3230 TimeSlice *)
Record t := mk { quantum_ticks : N; used_ticks : N }.
(* kernel_bootstrap/src/main.rs:3233-3238 TimeSlice::new *)
Definition new (quantum_ticks : N) : t := mk quantum_ticks 0.
(* kernel_bootstrap/src/main.rs:3240-3242 TimeSlice::advance *)
Definition advance (ticks : N) (s : t) : t := mk (quantum_ticks s) (saturating_add (used_ticks s) ticks).
(* kernel_bootstrap/src/main.rs:3244-3246 TimeSlice::should_preempt *)
Definition should_preempt (s : t) : bool := (0 <? quantum_ticks s) && (quantum_ticks s <=? used_ticks s).
(* kernel_bootstrap/src/main.rs:3248-3250 TimeSlice::reset *)
Definition reset (s : t) : t := mk (quantum_ticks s) 0.
End TimeSlice.

Module KernelErrorB.
(* kernel_bootstrap/src/main.rs:3272-3280 KernelError *)
Inductive t := OutOfTasks | OutOfChannels | ChannelFull | ChannelEmpty | InvalidChannel | Unsupported.
End KernelErrorB.

(** ** What tasks see of the kernel *)

Module KernelContext.
(* kernel_bootstrap/src/main.rs:3292-3298 KernelContext *)
Record t := mk {
  boot : BootInfo.t;
  allocator : option FrameAllocator.t;
  heap : option BumpHeap.t;
  channels : list Channel.t;
  next_message_id : N
}.
#[global] Instance rebuild_t : Rebuild t := λ c,
  mk (boot c) (allocator c) (heap c) (channels c) (next_message_id c).
(* kernel_bootstrap/src/main.rs:3301-3305 KernelContext::next_message_id *)
Definition take_message_id (c : t) : N * t :=
  (next_message_id c, c <| next_message_id := saturating_add (next_message_id c) 1 |>).
(** An operation on one channel of the array. *)
Definition on_channel {A} (f : Channel.t → outcome (A * Channel.t)) (channel : SChannelId) (c : t)
    : outcome (A * t) :=
  ch ← slice_get (channels c) channel;
  '(r, ch) ← f ch;
  chs ← slice_set (channels c) channel ch;
  Return (r, c <| channels := chs |>).
(* kernel_bootstrap/src/main.rs:3307-3312 KernelContext::try_recv *)
Definition try_recv (channel : SChannelId) (c : t) : outcome (option KernelMessage.t * t) :=
  if MAX_CHANNELS <=? channel then Return (None, c) else on_channel Channel.recv channel c.
(* kernel_bootstrap/src/main.rs:3320-3322 KernelContext::create_task *)
Definition create_task (c : t) : result N KernelErrorB.t * t := (Err KernelErrorB.Unsupported, c).
(* kernel_bootstrap/src/main.rs:3324-3326 KernelContext::create_channel *)
Definition create_channel (c : t) : result SChannelId KernelErrorB.t * t := (Err KernelErrorB.Unsupported, c).
(* kernel_bootstrap/src/main.rs:3328-3335 KernelContext::send *)
Definition send (channel : SChannelId) (message : KernelMessage.t) (c : t)
    : outcome (result unit KernelErrorB.t * t) :=
  if MAX_CHANNELS <=? channel then Return (Err KernelErrorB.InvalidChannel, c)
  else
    '(r, c) ← on_channel (Channel.send message) channel c;
    Return (map_err (λ _, KernelErrorB.ChannelFull) r, c).
(* kernel_bootstrap/src/main.rs:3337-3344 KernelContext::recv *)
Definition recv (channel : SChannelId) (c : t) : outcome (result KernelMessage.t KernelErrorB.t * t) :=
  if MAX_CHANNELS <=? channel then Return (Err KernelErrorB.InvalidChannel, c)
  else
    '(r, c) ← on_channel Channel.recv channel c;
    Return (ok_or r KernelErrorB.ChannelEmpty, c).
End KernelContext.

(** The machine under the kernel: the serial port and the tick counter, which may have
    advanced at each load.  [patience] bounds the spinning of [sys_sleep]. *)
Class Platform (W : Type) := {
  platform_serial :: SerialLine W;
  get_tick_count : W → N * W;
  patience : nat
}.

Section platform.
Context {W : Type} `{Platform W}.

(* kernel_bootstrap/src/main.rs:533-535 sys_yield *)
Definition sys_yield (w : W) : W := w.
(** The wait of [sys_sleep]; [fuel] is the patience left. *)
Fixpoint sleep_until (fuel : nat) (deadline : outcome N) (w : W) : outcome W :=
  match fuel with
  | O => Diverge
  | S fuel =>
      let '(now, w) := get_tick_count w in
      d ← deadline;
      if now <? d then sleep_until fuel deadline w else Return w
  end.
(** The deadline [start + ticks] is computed at each turn. *)
(* kernel_bootstrap/src/main.rs:544-549 sys_sleep *)
Definition sys_sleep (ticks : N) (w : W) : outcome W :=
  let '(start, w) := get_tick_count w in
  sleep_until patience (add_u64 start ticks) w.

(* kernel_bootstrap/src/main.rs:552-558 sys_send *)
Definition sys_send (c : KernelContext.t) (channel : SChannelId) (msg : KernelMessage.t)
    : outcome (result unit KernelErrorB.t * KernelContext.t) := KernelContext.send channel msg c.
(* kernel_bootstrap/src/main.rs:561-563 sys_recv *)
Definition sys_recv (c : KernelContext.t) (channel : SChannelId)
    : outcome (result KernelMessage.t KernelErrorB.t * KernelContext.t) := KernelContext.recv channel c.
End platform.

(** ** The command service *)

Module CommandService.
(* kernel_bootstrap/src/main.rs:3618-3622 CommandService *)
Record t := mk { task_id : N; command_channel : SChannelId; poll_count : N }.
#[global] Instance rebuild_t : Rebuild t := λ s, mk (task_id s) (command_channel s) (poll_count s).
(* kernel_bootstrap/src/main.rs:3625-3631 CommandService::new *)
Definition new (command_channel : SChannelId) : t := mk 0 command_channel 0.

Section with_platform.
Context {W : Type} `{Platform W}.

(** The lines a command prints, or the error it answers; with the state after it. *)
Definition printed (r : KernelContext.t * W) (lines : list string)
    : outcome (result (list string) CommandErrorB.t * (KernelContext.t * W)) := Return (Ok lines, r).
Definition failed (r : KernelContext.t * W) (code : CommandErrorB.code_t) (message : string)
    : outcome (result (list string) CommandErrorB.t * (KernelContext.t * W)) :=
  Return (Err (CommandErrorB.new code message), r).

(* kernel_bootstrap/src/main.rs:3704-3722 CommandService::handle_command (boot) *)
Definition boot_lines (boot : BootInfo.t) : list string :=
  [match BootInfo.hhdm_offset boot with
   | Some offset => "hhdm: offset=0x" +:+ Utf8.hex offset
   | None => "hhdm: unavailable"
   end;
   match BootInfo.kernel_phys boot, BootInfo.kernel_virt boot with
   | Some phys, Some virt => "kernel: phys=0x" +:+ Utf8.hex phys +:+ " virt=0x" +:+ Utf8.hex virt
   | _, _ => "kernel: address unavailable"
   end].
(* kernel_bootstrap/src/main.rs:3723-3742 CommandService::handle_command (mem) *)
Definition mem_lines (c : KernelContext.t) : outcome (list string) :=
  let boot := KernelContext.boot c in
  let first := "memory: entries=" +:+ pretty (BootInfo.mem_entries boot) +:+ " total="
    +:+ pretty (BootInfo.mem_total_kib boot) +:+ " KiB usable="
    +:+ pretty (BootInfo.mem_usable_kib boot) +:+ " KiB" in
  match KernelContext.allocator c with
  | Some a =>
      total ← FrameAllocator.total_frames a;
      Return [first;
        "allocator: ranges=" +:+ pretty (FrameAllocator.range_count a) +:+ " frames=" +:+ pretty total
        +:+ " next=0x" +:+ Utf8.hex (FrameAllocator.next_frame a) +:+ " reclaimed="
        +:+ pretty (FrameAllocator.reclaimed_count a)]
  | None => Return [first; "allocator: unavailable"]
  end.
(* kernel_bootstrap/src/main.rs:3743-3767 CommandService::handle_command (alloc) *)
Definition run_alloc (c : KernelContext.t) (w : W)
    : outcome (result (list string) CommandErrorB.t * (KernelContext.t * W)) :=
  match KernelContext.allocator c with
  | Some a =>
      '(o, a) ← FrameAllocator.allocate_frame a;
      let c := c <| KernelContext.allocator := Some a |> in
      match o with
      | Some frame =>
          match BootInfo.hhdm_offset (KernelContext.boot c) with
          | Some offset =>
              virt ← add_u64 offset frame;
              printed (c, w) ["frame: phys=0x" +:+ Utf8.hex frame +:+ " virt=0x" +:+ Utf8.hex virt]
          | None => printed (c, w) ["frame: phys=0x" +:+ Utf8.hex frame]
          end
      | None => failed (c, w) CommandErrorB.Internal "out of memory"
      end
  | None => failed (c, w) CommandErrorB.ServiceUnavailable "allocator unavailable"
  end.
(* kernel_bootstrap/src/main.rs:3768-3779 CommandService::handle_command (heap) *)
Definition heap_line (c : KernelContext.t) : string :=
  match KernelContext.heap c with
  | Some heap =>
      let s := BumpHeap.stats heap in
      "heap: used=" +:+ pretty (AllocationStats.used s) +:+ " bytes free=" +:+ pretty (AllocationStats.free s)
      +:+ " bytes total=" +:+ pretty (AllocationStats.total s) +:+ " allocs="
      +:+ pretty (AllocationStats.allocations s)
  | None => "heap: unavailable"
  end.
(* kernel_bootstrap/src/main.rs:3780-3803 CommandService::handle_command (heap-alloc) *)
Definition run_heap_alloc (c : KernelContext.t) (w : W)
    : outcome (result (list string) CommandErrorB.t * (KernelContext.t * W)) :=
  match KernelContext.heap c with
  | Some heap =>
      '(o, heap) ← BumpHeap.alloc 64 16 AllocationLifetime.KernelTransient heap;
      let c := c <| KernelContext.heap := Some heap |> in
      match o with
      | Some record =>
          printed (c, w) ["heap: allocated 64 bytes at 0x" +:+ Utf8.hex (AllocationRecord.start record) +:+ " ("
                          +:+ AllocationLifetime.debug (AllocationRecord.lifetime record) +:+ ")"]
      | None => failed (c, w) CommandErrorB.Internal "heap out of memory"
      end
  | None => failed (c, w) CommandErrorB.ServiceUnavailable "heap unavailable"
  end.
(** The [match] on the command; [halt] stops the processor. *)
(* kernel_bootstrap/src/main.rs:3680-3821 CommandService::handle_command (dispatch) *)
Definition run_command (command : Str.t) (c : KernelContext.t) (w : W)
    : outcome (result (list string) CommandErrorB.t * (KernelContext.t * W)) :=
  if decide (command = Str.of_string "help") then
    printed (c, w) ["commands: help, halt, boot, mem, alloc, heap, heap-alloc, ticks"]
  else if decide (command = Str.of_string "halt") then Diverge
  else if decide (command = Str.of_string "boot") then printed (c, w) (boot_lines (KernelContext.boot c))
  else if decide (command = Str.of_string "mem") then lines ← mem_lines c; printed (c, w) lines
  else if decide (command = Str.of_string "alloc") then run_alloc c w
  else if decide (command = Str.of_string "heap") then printed (c, w) [heap_line c]
  else if decide (command = Str.of_string "heap-alloc") then run_heap_alloc c w
  else if decide (command = Str.of_string "ticks") then
    let '(ticks, w) := get_tick_count w in
    printed (c, w) ["kernel ticks: " +:+ pretty ticks +:+ " (at 100 Hz)"]
  else failed (c, w) CommandErrorB.InvalidCommand "unknown command".
(* kernel_bootstrap/src/main.rs:3660-3823 CommandService::handle_command *)
Definition handle_command (request : CommandRequestB.t) (c : KernelContext.t) (w : W)
    : outcome (CommandResponseB.t * (KernelContext.t * W)) :=
  let correlation_id := CommandRequestB.request_id request in
  match CommandRequestB.as_str request with
  | None =>
      Return (CommandResponseB.error correlation_id
                (CommandErrorB.new CommandErrorB.InvalidCommand "invalid utf-8"), (c, w))
  | Some command =>
      match Str.trim command with
      | [] => Return (CommandResponseB.ok correlation_id (FixedBuffer.new RESPONSE_MAX), (c, w))
      | command =>
          '(r, st) ← run_command command c w;
          match r with
          | Ok lines =>
              output ← fold_outcome (λ b line, FixedBuffer.writeln line b) lines (FixedBuffer.new RESPONSE_MAX);
              Return (CommandResponseB.ok correlation_id output, st)
          | Err e => Return (CommandResponseB.error correlation_id e, st)
          end
      end
  end.

(** The loop over the command channel.  A response that comes back on it is not answered, so
    twice the capacity bounds the turns. *)
(* kernel_bootstrap/src/main.rs:3647-3656 CommandService::poll (the loop) *)
Fixpoint serve (fuel : nat) (channel : SChannelId) (progressed : bool) (c : KernelContext.t) (w : W)
    : outcome (bool * (KernelContext.t * W)) :=
  match fuel with
  | O => Diverge
  | S fuel =>
      '(o, c) ← KernelContext.try_recv channel c;
      match o with
      | None => Return (progressed, (c, w))
      | Some (KernelMessage.CommandRequest request) =>
          '(response, (c, w)) ← handle_command request c w;
          '(_, c) ← KernelContext.send (CommandRequestB.reply_channel request)
                      (KernelMessage.CommandResponse response) c;
          serve fuel channel true c w
      | Some _ => serve fuel channel true c w
      end
  end.
(* kernel_bootstrap/src/main.rs:3633-3658 CommandService::poll *)
Definition poll (s : t) (c : KernelContext.t) (w : W) : outcome (bool * t * (KernelContext.t * W)) :=
  w ← (if poll_count s mod 2 =? 0 then Return (sys_yield w) else sys_sleep 1 w);
  n ← add_u64 (poll_count s) 1;
  let s := s <| poll_count := n |> in
  '(progressed, st) ← serve 17 (command_channel s) false c w;
  Return (progressed, s, st).
End with_platform.
End CommandService.

(** ** The console service *)

Module ConsoleService.
(* kernel_bootstrap/src/main.rs:3514-3521 ConsoleService *)
Record t := mk {
  task_id : N;
  command_channel : SChannelId;
  response_channel : SChannelId;
  buffer : list N;
  len : N;
  awaiting_response : bool
}.
#[global] Instance rebuild_t : Rebuild t := λ s,
  mk (task_id s) (command_channel s) (response_channel s) (buffer s) (len s) (awaiting_response s).
(* kernel_bootstrap/src/main.rs:3524-3533 ConsoleService::new *)
Definition new (command_channel response_channel : SChannelId) : t :=
  mk 0 command_channel response_channel (replicate (N.to_nat COMMAND_MAX) 0) 0 false.

Section with_platform.
Context {W : Type} `{Platform W}.
Notation say text w := (serial_write_str text w) (only parsing).

(* kernel_bootstrap/src/main.rs:3597-3615 ConsoleService::render_response *)
Definition render_response (response : CommandResponseB.t) (w : W) : outcome W :=
  match CommandResponseB.status response with
  | CommandResponseB.StatusOk =>
      match CommandResponseB.output_str response with
      | Some output => w ← say output w; say [13; 10] w
      | None => Return w
      end
  | CommandResponseB.StatusError err =>
      w ← say (Utf8.bytes "error: ") w;
      w ← (match CommandErrorB.as_str err with
           | Some msg => say msg w
           | None => say (Utf8.bytes "invalid error") w
           end);
      say [13; 10] w
  end.
(* kernel_bootstrap/src/main.rs:3577-3595 ConsoleService::submit_command *)
Definition submit_command (s : t) (c : KernelContext.t) (w : W) : outcome (t * (KernelContext.t * W)) :=
  let '(request_id, c) := KernelContext.take_message_id c in
  match CommandRequestB.from_bytes (take (N.to_nat (len s)) (buffer s)) request_id (response_channel s) with
  | None => w ← say (Utf8.bytes "error: command too long" ++ [10]) w; Return (s, (c, w))
  | Some request =>
      '(r, c) ← KernelContext.send (command_channel s) (KernelMessage.CommandRequest request) c;
      if is_err r
      then w ← say (Utf8.bytes "error: command queue full" ++ [10]) w; Return (s, (c, w))
      else Return (s <| awaiting_response := true |>, (c, w))
  end.
(** The loop over the response channel: it sends nothing, so the capacity bounds it. *)
(* kernel_bootstrap/src/main.rs:3538-3545 ConsoleService::poll (the loop) *)
Fixpoint drain (fuel : nat) (progressed : bool) (s : t) (c : KernelContext.t) (w : W)
    : outcome (bool * t * (KernelContext.t * W)) :=
  match fuel with
  | O => Diverge
  | S fuel =>
      '(o, c) ← KernelContext.try_recv (response_channel s) c;
      match o with
      | None => Return (progressed, s, (c, w))
      | Some (KernelMessage.CommandResponse response) =>
          w ← render_response response w;
          w ← say [62; 32] w;
          drain fuel true (s <| awaiting_response := false |>) c w
      | Some _ => drain fuel progressed s c w
      end
  end.
(* kernel_bootstrap/src/main.rs:3547-3572 ConsoleService::poll (a byte) *)
Definition accept_byte (byte : N) (s : t) (c : KernelContext.t) (w : W)
    : outcome (t * (KernelContext.t * W)) :=
  if (byte =? 13) || (byte =? 10) then
    w ← say [13; 10] w;
    '(s, st) ← submit_command s c w;
    Return (s <| len := 0 |>, st)
  else if (byte =? 0x08) || (byte =? 0x7f) then
    if 0 <? len s
    then w ← say [8; 32; 8] w; Return (s <| len ::= N.pred |>, (c, w))
    else Return (s, (c, w))
  else if len s <? Prelude.len (buffer s) then
    b ← slice_set (buffer s) (len s) byte;
    w ← write_byte byte w;
    Return (s <| buffer := b |> <| len ::= N.succ |>, (c, w))
  else
    w ← say ([13; 10] ++ Utf8.bytes "error: command too long" ++ [13; 10; 62; 32]) w;
    Return (s <| len := 0 |>, (c, w)).
(* kernel_bootstrap/src/main.rs:3535-3575 ConsoleService::poll *)
Definition poll (s : t) (c : KernelContext.t) (w : W) : outcome (bool * t * (KernelContext.t * W)) :=
  '(progressed, s, (c, w)) ← drain 9 false s c w;
  '(o, w) ← try_read_byte w;
  match o with
  | None => Return (progressed, s, (c, w))
  | Some byte => '(s, st) ← accept_byte byte s c w; Return (true, s, st)
  end.
End with_platform.
End ConsoleService.

(** ** Tasks *)

Module TaskKind.
(* kernel_bootstrap/src/main.rs:3173-3176 TaskKind *)
Inductive t := Console (s : ConsoleService.t) | Command (s : CommandService.t).
(* kernel_bootstrap/src/main.rs:3179-3184 TaskKind::poll *)
Definition poll `{Platform W} (k : t) (c : KernelContext.t) (w : W)
    : outcome (bool * t * (KernelContext.t * W)) :=
  match k with
  | Console s => '(p, s, st) ← ConsoleService.poll s c w; Return (p, Console s, st)
  | Command s => '(p, s, st) ← CommandService.poll s c w; Return (p, Command s, st)
  end.
(* kernel_bootstrap/src/main.rs:3186-3191 TaskKind::set_task_id *)
Definition set_task_id (id : N) (k : t) : t :=
  match k with
  | Console s => Console (s <| ConsoleService.task_id := id |>)
  | Command s => Command (s <| CommandService.task_id := id |>)
  end.
End TaskKind.

Module TaskSlot.
(* kernel_bootstrap/src/main.rs:3150-3154 TaskDomain *)
Inductive domain_t := KernelDomain | UserDomain.
(* kernel_bootstrap/src/main.rs:3156-3161 TaskSlot *)
Record t := mk { id : N; domain : domain_t; time_slice : TimeSlice.t; kind : TaskKind.t }.
(* kernel_bootstrap/src/main.rs:3164-3170 TaskSlot::poll *)
Definition poll `{Platform W} (s : t) (c : KernelContext.t) (w : W)
    : outcome (bool * t * (KernelContext.t * W)) :=
  let ts := TimeSlice.advance 1 (time_slice s) in
  let ts := if TimeSlice.should_preempt ts then TimeSlice.reset ts else ts in
  '(p, k, st) ← TaskKind.poll (kind s) c w;
  Return (p, mk (id s) (domain s) ts k, st).
End TaskSlot.

(** ** The kernel *)

Module BootKernel.
(* kernel_bootstrap/src/main.rs:3347-3356 Kernel *)
Record t := mk {
  boot : BootInfo.t;
  allocator : option FrameAllocator.t;
  heap : option BumpHeap.t;
  channels : list Channel.t;
  channel_count : N;
  next_message_id : N;
  scheduler : CooperativeScheduler.t;
  tasks : list (option TaskSlot.t)
}.
#[global] Instance rebuild_t : Rebuild t := λ k,
  mk (boot k) (allocator k) (heap k) (channels k) (channel_count k) (next_message_id k)
     (scheduler k) (tasks k).
(* kernel_bootstrap/src/main.rs:3481-3483 Kernel::create_task *)
Definition create_task (k : t) : result N KernelErrorB.t * t := (Err KernelErrorB.Unsupported, k).
(* kernel_bootstrap/src/main.rs:3485-3493 Kernel::create_channel *)
Definition create_channel (k : t) : outcome (result SChannelId KernelErrorB.t * t) :=
  if MAX_CHANNELS <=? channel_count k then Return (Err KernelErrorB.OutOfChannels, k)
  else
    let id := channel_count k in
    let k := k <| channel_count := N.min (channel_count k + 1) 255 |> in
    ch ← slice_get (channels k) id;
    chs ← slice_set (channels k) id (Channel.reset ch);
    Return (Ok id, k <| channels := chs |>).
(** The fields a [KernelContext] borrows, and their return. *)
Definition context (k : t) : KernelContext.t :=
  KernelContext.mk (boot k) (allocator k) (heap k) (channels k) (next_message_id k).
Definition with_context (c : KernelContext.t) (k : t) : t :=
  mk (KernelContext.boot c) (KernelContext.allocator c) (KernelContext.heap c) (KernelContext.channels c)
     (channel_count k) (KernelContext.next_message_id c) (scheduler k) (tasks k).
(* kernel_bootstrap/src/main.rs:3495-3502 Kernel::send *)
Definition send (channel : SChannelId) (message : KernelMessage.t) (k : t)
    : outcome (result unit KernelErrorB.t * t) :=
  '(r, c) ← KernelContext.send channel message (context k); Return (r, with_context c k).
(* kernel_bootstrap/src/main.rs:3504-3511 Kernel::recv *)
Definition recv (channel : SChannelId) (k : t) : outcome (result KernelMessage.t KernelErrorB.t * t) :=
  '(r, c) ← KernelContext.recv channel (context k); Return (r, with_context c k).
(* kernel_bootstrap/src/main.rs:3453-3477 Kernel::spawn_task *)
Definition spawn_task (domain : TaskSlot.domain_t) (kind : TaskKind.t) (k : t)
    : outcome (result N KernelErrorB.t * t) :=
  match list_find (λ slot, slot = None) (tasks k) with
  | Some (index, _) =>
      let id := N.of_nat index in
      let slot := TaskSlot.mk id domain (TimeSlice.new 5) (TaskKind.set_task_id id kind) in
      let k := k <| tasks ::= <[index := Some slot]> |> in
      s ← CooperativeScheduler.add_task id (scheduler k);
      Return (Ok id, k <| scheduler := s |>)
  | None => Return (Err KernelErrorB.OutOfTasks, k)
  end.
(** The end of both constructors: two channels and two tasks. *)
Definition start_services (k : t) : outcome t :=
  '(r1, k) ← create_channel k;
  match r1 with
  | Err _ => Panic
  | Ok command_channel =>
      '(r2, k) ← create_channel k;
      match r2 with
      | Err _ => Panic
      | Ok response_channel =>
          let command_task := CommandService.new command_channel in
          let console_task := ConsoleService.new command_channel response_channel in
          '(_, k) ← spawn_task TaskSlot.UserDomain (TaskKind.Command command_task) k;
          '(_, k) ← spawn_task TaskSlot.UserDomain (TaskKind.Console console_task) k;
          Return k
      end
  end.
(* kernel_bootstrap/src/main.rs:3400-3422 Kernel::new *)
Definition new (boot : BootInfo.t) (allocator : option FrameAllocator.t) (heap : option BumpHeap.t) : outcome t :=
  start_services
    (mk boot allocator heap (replicate (N.to_nat MAX_CHANNELS) Channel.new) 0 1 CooperativeScheduler.new
       (replicate (N.to_nat MAX_TASKS) None)).
(** The storage is uninitialised memory of the size of a kernel: each field is written, the
    arrays one element at a time. *)
(* kernel_bootstrap/src/main.rs:3362-3398 Kernel::init_in_place *)
Definition init_in_place (storage : t) (boot : BootInfo.t) (allocator : option FrameAllocator.t)
    (heap : option BumpHeap.t) : outcome t :=
  let k := storage in
  let k := mk boot (BootKernel.allocator k) (BootKernel.heap k) (channels k) (channel_count k)
             (next_message_id k) (scheduler k) (tasks k) in
  let k := mk (BootKernel.boot k) allocator heap (channels k) 0 1 CooperativeScheduler.new (tasks k) in
  chs ← fold_outcome (λ l i, slice_set l (N.of_nat i) Channel.new) (seq 0 (N.to_nat MAX_CHANNELS)) (channels k);
  let k := k <| channels := chs |> in
  ts ← fold_outcome (λ l i, slice_set l (N.of_nat i) None) (seq 0 (N.to_nat MAX_TASKS)) (tasks k);
  let k := k <| tasks := ts |> in
  start_services k.

Section with_platform.
Context {W : Type} `{Platform W}.
(* kernel_bootstrap/src/main.rs:3424-3451 Kernel::run_once *)
Definition run_once (k : t) (w : W) : outcome (bool * (t * W)) :=
  '(o, s) ← CooperativeScheduler.next_task (scheduler k);
  let k := k <| scheduler := s |> in
  match o with
  | None => Return (false, (k, w))
  | Some index =>
      match tasks k !! N.to_nat index with
      | Some (Some task) =>
          '(progressed, task, (c, w)) ← TaskSlot.poll task (context k) w;
          Return (progressed, (with_context c (k <| tasks ::= <[N.to_nat index := Some task]> |>), w))
      | _ => Return (false, (k, w))
      end
  end.
(** [console_loop] runs this forever; [n] turns of it, without the dots it prints. *)
Fixpoint run (n : nat) (k : t) (w : W) : outcome (t * W) :=
  match n with
  | O => Return (k, w)
  | S n => '(_, (k, w)) ← run_once k w; run n k w
  end.
End with_platform.
End BootKernel.
