(* ===== verification/BareKernelProps.v ===== *)
(** * Correctness of the bare-metal kernel

    [ChannelSpec]: a channel is a bounded first-in first-out queue.  [BufferSpec]: fixed
    buffers.  [RoundRobinSpec]: the scheduler.  [ServiceSpec]: requests are answered once and
    in order.  [SessionSpec]: what is typed at the console is answered on the console. *)

From S2P Require Import Prelude Debug Editor Input Text BareMem BareIo BareKernel.
Open Scope list_scope.
Open Scope N_scope.

#[local] Ltac Zify.zify_post_hook ::= Z.to_euclidean_division_equations.

(** ** Channels *)

Module ChannelSpec.
Import Channel.

Definition count (c : Channel.t) : N :=
  if full c then CHANNEL_CAPACITY else (tail c + CHANNEL_CAPACITY - head c) mod CHANNEL_CAPACITY.
Definition at_ (c : Channel.t) (i : nat) : KernelMessage.t :=
  nth (N.to_nat ((head c + N.of_nat i) mod CHANNEL_CAPACITY)) (queue c) KernelMessage.Empty.
(** The messages that wait, the oldest first. *)
Definition contents (c : Channel.t) : list KernelMessage.t := at_ c <$> seq 0 (N.to_nat (count c)).
Record wf (c : Channel.t) : Prop := {
  wf_queue : length (queue c) = 8%nat;
  wf_head : head c < 8;
  wf_tail : tail c < 8;
  wf_full : full c = true → head c = tail c
}.

Lemma count_bound c : wf c → count c ≤ 8 ∧ (full c = false → count c < 8) ∧
  tail c = (head c + count c) mod 8.
Proof. intros [_ ? ? Hf]. unfold count, CHANNEL_CAPACITY. destruct (full c); [rewrite Hf by done|]; split_and!; intros; try done; lia. Qed.
Lemma channel_contents_length c : length (contents c) = N.to_nat (count c).
Proof. unfold contents. by rewrite length_fmap, length_seq. Qed.
Lemma contents_bound c : wf c → (length (contents c) ≤ 8)%nat.
Proof. intros Hwf. rewrite channel_contents_length. destruct (count_bound c Hwf). lia. Qed.

Lemma channel_new_wf : wf Channel.new ∧ contents Channel.new = [].
Proof. split; [|done]. by split. Qed.
Lemma reset_wf c : wf (reset c) ∧ contents (reset c) = [].
Proof. exact channel_new_wf. Qed.

Lemma send_spec m c : wf c →
  ∃ c', wf c' ∧
    (if bool_decide (length (contents c) = 8%nat)
     then send m c = Return (Err ChannelError.Full, c') ∧ c' = c
     else send m c = Return (Ok tt, c') ∧ contents c' = contents c ++ [m]).
Proof.
  intros Hwf. destruct (count_bound c Hwf) as (Hc & Hnf & Ht). rewrite channel_contents_length. unfold send.
  destruct (full c) eqn:Ef.
  { exists c. split; [done|]. rewrite bool_decide_true; [done|]. unfold count. by rewrite Ef. }
  specialize (Hnf eq_refl). rewrite bool_decide_false by lia. destruct Hwf as [Hq Hh Htl _].
  rewrite (proj2 (slice_set_Return (queue c) (tail c) m _)) by (split; [lia|done]). simpl.
  unfold update_field. simpl. unfold CHANNEL_CAPACITY.
  set (c' := if _ =? _ then _ else _). exists c'.
  assert (queue c' = <[N.to_nat (tail c) := m]> (queue c) ∧ head c' = head c ∧
    tail c' = (tail c + 1) mod 8 ∧ count c' = count c + 1 ∧ (full c' = true → head c' = tail c')) as (E1 & E2 & E3 & E4 & E5).
  { unfold c', count in *. rewrite Ef in *. unfold CHANNEL_CAPACITY in *.
    destruct (N.eqb_spec ((tail c + 1) mod 8) (head c)); simpl; rewrite ?Ef; split_and!; try done; lia. }
  split; [|split; [done|]].
  - split; rewrite ?E1, ?E2, ?E3, ?length_insert; try done; try lia.
  - unfold contents. rewrite E4. replace (N.to_nat (count c + 1)) with (S (N.to_nat (count c))) by lia.
    rewrite seq_S, fmap_app. f_equal.
    + apply list_fmap_ext. intros i k Hk. apply lookup_seq in Hk as [-> Hk]. unfold at_. rewrite E1, E2.
      rewrite !nth_lookup, list_lookup_insert_ne; [done|]. unfold CHANNEL_CAPACITY. rewrite Ht. lia.
    + simpl. f_equal. unfold at_. rewrite E1, E2, nth_lookup, Ht. unfold CHANNEL_CAPACITY.
      replace (N.to_nat ((head c + N.of_nat (N.to_nat (count c))) mod 8))
        with (N.to_nat ((head c + count c) mod 8)) by lia.
      rewrite list_lookup_insert_eq by lia. done.
Qed.

Lemma recv_spec c : wf c →
  ∃ c', recv c = Return (List.hd_error (contents c), c') ∧ wf c' ∧ contents c' = List.tl (contents c) ∧
    (contents c = [] → c' = c).
Proof.
  intros Hwf. destruct (count_bound c Hwf) as (Hc & Hnf & Ht). unfold recv.
  assert (is_empty c = (count c =? 0)) as ->.
  { unfold is_empty, count, CHANNEL_CAPACITY in *. destruct Hwf. destruct (full c); simpl; [done|].
    destruct (N.eqb_spec (head c) (tail c)), (N.eqb_spec ((tail c + 8 - head c) mod 8) 0); (done || lia). }
  destruct (N.eqb_spec (count c) 0) as [E0|Hpos].
  { exists c. assert (contents c = []) as -> by (unfold contents; by rewrite E0). done. }
  destruct (lookup_lt_is_Some_2 (queue c) (N.to_nat (head c))) as [m Hm]; [destruct Hwf; lia|].
  rewrite (proj2 (slice_get_Return (queue c) (head c) m) Hm). simpl. unfold update_field. simpl. unfold CHANNEL_CAPACITY.
  set (c' := mk _ _ _ _).
  assert (contents c = m :: contents c') as Ec.
  { assert (count c' = count c - 1) as E. { unfold count, CHANNEL_CAPACITY in *. destruct Hwf as [? ? ? Hf].
      simpl. destruct (full c); [rewrite Hf in * by done|]; lia. }
    unfold contents. rewrite E. replace (N.to_nat (count c)) with (S (N.to_nat (count c - 1))) by lia. simpl. f_equal.
    - unfold at_. rewrite N.add_0_r. unfold CHANNEL_CAPACITY. rewrite N.mod_small by (by destruct Hwf).
      rewrite nth_lookup, Hm. done.
    - rewrite <- fmap_S_seq, <- list_fmap_compose. apply list_fmap_ext. intros i k _. simpl. unfold at_. simpl.
      unfold CHANNEL_CAPACITY. f_equal. lia. }
  exists c'. rewrite Ec. split_and!; [done| |done|done].
  destruct Hwf. split; simpl; try done. lia.
Qed.

(** *** The abstract queue *)
Inductive channel_op := Send (m : KernelMessage.t) | Recv.
Inductive channel_answer := Sent (ok : bool) | Received (o : option KernelMessage.t).
Definition spec_step (l : list KernelMessage.t) (o : channel_op) : channel_answer * list KernelMessage.t :=
  match o with
  | Send m => if bool_decide (length l = 8%nat) then (Sent false, l) else (Sent true, l ++ [m])
  | Recv => (Received (List.hd_error l), List.tl l)
  end.
Definition channel_step (c : Channel.t) (o : channel_op) : outcome (channel_answer * Channel.t) :=
  match o with
  | Send m => '(r, c) ← send m c; Return (Sent (is_ok r), c)
  | Recv => '(x, c) ← recv c; Return (Received x, c)
  end.
Fixpoint spec_run (l : list KernelMessage.t) (ops : list channel_op) : list channel_answer * list KernelMessage.t :=
  match ops with
  | [] => ([], l)
  | o :: ops => let '(r, l) := spec_step l o in let '(rs, l) := spec_run l ops in (r :: rs, l)
  end.
Fixpoint channel_run (c : Channel.t) (ops : list channel_op) : outcome (list channel_answer * Channel.t) :=
  match ops with
  | [] => Return ([], c)
  | o :: ops => '(r, c) ← channel_step c o; '(rs, c) ← channel_run c ops; Return (r :: rs, c)
  end.

(** A channel of the bare-metal kernel is a first-in first-out queue of eight messages:
    every sequence of sends and receives on the ring buffer returns, with the answers of the
    abstract queue; a send is refused exactly when eight messages wait. *)
Theorem channel_is_bounded_fifo c ops : wf c →
  ∃ c', channel_run c ops = Return ((spec_run (contents c) ops).1, c') ∧ wf c' ∧
    contents c' = (spec_run (contents c) ops).2.
Proof.
  revert c. induction ops as [|o ops IH]; intros c Hwf; simpl; [by exists c|].
  assert (∃ c1, channel_step c o = Return ((spec_step (contents c) o).1, c1) ∧ wf c1 ∧
    contents c1 = (spec_step (contents c) o).2) as (c1 & -> & Hwf1 & Hc1).
  { destruct o as [m|]; simpl.
    - destruct (send_spec m c Hwf) as (c1 & Hwf1 & H). destruct (bool_decide _);
        destruct H as [-> Hc]; simpl; exists c1; by rewrite Hc.
    - destruct (recv_spec c Hwf) as (c1 & -> & Hwf1 & Hc & _). simpl. by exists c1. }
  simpl. destruct (IH c1 Hwf1) as (c' & -> & Hwf' & Hc'). simpl. exists c'. rewrite Hc1 in *.
  destruct (spec_step (contents c) o) as [r l]. simpl in *. by destruct (spec_run l ops).
Qed.

Lemma channel_is_bounded_fifo_witness :
  wf Channel.new ∧ ∃ c', channel_run Channel.new (replicate 9 (Send KernelMessage.Empty) ++ [Recv])
    = Return (replicate 8 (Sent true) ++ [Sent false; Received (Some KernelMessage.Empty)], c').
Proof.
  split; [exact (proj1 channel_new_wf)|].
  destruct (channel_is_bounded_fifo Channel.new (replicate 9 (Send KernelMessage.Empty) ++ [Recv]) (proj1 channel_new_wf))
    as (c' & E & _). exists c'. exact E.
Defined.
End ChannelSpec.

(** ** Fixed buffers *)

Module BufferSpec.
Import FixedBuffer.

Definition wf (b : FixedBuffer.t) : Prop := len b ≤ Prelude.len (buf b).
(** A write appends what fits, and two writes are one write of both texts. *)
Lemma write_str_spec s b : wf b → ∃ b', write_str s b = Return b' ∧ wf b' ∧
  Prelude.len (buf b') = Prelude.len (buf b) ∧
  as_bytes b' = take (length (buf b)) (as_bytes b ++ s).
Proof.
  unfold wf. intros Hwf. unfold write_str, saturating_sub.
  set (n := N.min (Prelude.len s) (Prelude.len (buf b) - len b)).
  assert (len b + n ≤ Prelude.len (buf b)) as Hn by (unfold n; lia).
  rewrite (proj2 (N.leb_le _ _) Hn). eexists. split; [done|]. simpl.
  assert (Prelude.len (take (N.to_nat (len b)) (buf b) ++ take (N.to_nat n) s ++ drop (N.to_nat (len b + n)) (buf b))
    = Prelude.len (buf b)) as El.
  { unfold Prelude.len in *. rewrite !length_app, !length_take, length_drop. unfold n in *. lia. }
  split_and!; [by rewrite El|done|]. unfold as_bytes. simpl. unfold Prelude.len in *.
  set (old := take (N.to_nat (len b)) (buf b)). assert (length old = N.to_nat (len b)) as Ho by (unfold old; rewrite length_take; lia).
  assert (length (take (N.to_nat n) s) = N.to_nat n) as Hs by (rewrite length_take; unfold n; lia).
  rewrite app_assoc, take_app_length' by (rewrite length_app; lia).
  rewrite take_app_ge by lia. f_equal. rewrite Ho.
  destruct (decide (N.of_nat (length s) ≤ N.of_nat (length (buf b)) - len b)).
  - rewrite !take_ge by (unfold n; lia). done.
  - unfold n. f_equal. lia.
Qed.
End BufferSpec.

(** ** The scheduler *)

Module RoundRobinSpec.
Import CooperativeScheduler.

Record wf (s : CooperativeScheduler.t) : Prop := {
  wf_order : length (order s) = 8%nat ∧ count s ≤ 8;
  wf_cursor : count s = 0 ∨ cursor s < count s
}.
Fixpoint turns (n : nat) (s : CooperativeScheduler.t) : outcome (list (option N) * CooperativeScheduler.t) :=
  match n with
  | O => Return ([], s)
  | S n => '(o, s) ← next_task s; '(os, s) ← turns n s; Return (o :: os, s)
  end.

Lemma next_task_spec s : wf s → 0 < count s → ∃ id s',
  next_task s = Return (Some id, s') ∧ order s !! N.to_nat (cursor s) = Some id ∧
  wf s' ∧ order s' = order s ∧ count s' = count s ∧ cursor s' = (cursor s + 1) mod count s.
Proof.
  intros [[Hl Hc] Hcur] Hpos. unfold next_task. destruct (N.eqb_spec (count s) 0); [lia|].
  destruct (lookup_lt_is_Some_2 (order s) (N.to_nat (cursor s))) as [id Hid]; [lia|].
  rewrite (proj2 (slice_get_Return _ _ _) Hid). simpl. exists id. eexists. split_and!; try done.
  split; simpl; [done|]. right. apply N.mod_lt. lia.
Qed.

(** The scheduler is fair: in any [count] consecutive turns every task of the run order
    gets a turn, wherever the cursor stands. *)
Theorem every_task_gets_a_turn s i id : wf s → i < count s → order s !! N.to_nat i = Some id →
  ∃ os s', turns (N.to_nat (count s)) s = Return (os, s') ∧ Some id ∈ os ∧
    length os = N.to_nat (count s).
Proof.
  intros Hwf Hi Hid. assert (∀ n s, wf s → 0 < count s → ∃ os s', turns n s = Return (os, s') ∧ length os = n ∧
    ∀ k, (k < n)%nat → os !! k = Some (order s !! N.to_nat ((cursor s + N.of_nat k) mod count s))) as Hrun.
  { clear. induction n as [|n IH]; intros s Hwf Hpos; simpl.
    { exists [], s. split_and!; try done. intros; lia. }
    destruct (next_task_spec s Hwf Hpos) as (id & s1 & -> & Hid & Hwf1 & Eo & Ec & Ecur). simpl.
    destruct (IH s1 Hwf1) as (os & s' & -> & Hl & Hos); [lia|]. simpl. exists (Some id :: os), s'. split_and!; try done.
    { simpl. by rewrite Hl. }
    intros [|k] Hk; simpl.
    - rewrite N.add_0_r, N.mod_small by (destruct (wf_cursor s Hwf); lia). by rewrite Hid.
    - rewrite Hos by lia. rewrite Eo, Ec, Ecur. do 3 f_equal. rewrite N.Div0.add_mod_idemp_l. f_equal. lia. }
  destruct (Hrun (N.to_nat (count s)) s Hwf) as (os & s' & E & Hl & Hos); [lia|]. exists os, s'. split_and!; try done.
  assert (cursor s < count s) as Hcur by (destruct (wf_cursor s Hwf); lia).
  set (k := if cursor s <=? i then i - cursor s else i + count s - cursor s).
  assert (k < count s ∧ (cursor s + k) mod count s = i) as [Hk Ek].
  { unfold k. destruct (N.leb_spec (cursor s) i).
    - split; [lia|]. replace (cursor s + (i - cursor s)) with i by lia. by apply N.mod_small.
    - split; [lia|]. replace (cursor s + (i + count s - cursor s)) with (i + 1 * count s) by lia.
      rewrite N.Div0.mod_add. by apply N.mod_small. }
  apply list_elem_of_lookup. exists (N.to_nat k). rewrite Hos by lia. rewrite N2Nat.id, Ek, Hid. done.
Qed.

Lemma every_task_gets_a_turn_witness :
  ∃ os s', turns 3 (mk [5; 6; 7; 0; 0; 0; 0; 0] 3 2) = Return (os, s') ∧ Some 6 ∈ os.
Proof.
  destruct (every_task_gets_a_turn (mk [5; 6; 7; 0; 0; 0; 0; 0] 3 2) 1 6) as (os & s' & E & Hin & _).
  - split; [by vm_compute|right; by vm_compute].
  - by vm_compute.
  - reflexivity.
  - exists os, s'. split; [exact E|exact Hin].
Defined.
End RoundRobinSpec.

(** ** What the services rely on

    A platform that delivers: bytes written are sent, bytes that wait are read in order, and
    the timer goes on: [steady w n] says that [n] more loads of the counter or sleeps find it
    running and below its maximum. *)
Class LawfulPlatform (W : Type) `{Platform W} := {
  sent : W → list N;
  waiting : W → list N;
  steady : W → nat → Prop;
  write_law b w : ∃ w', write_byte b w = Return w' ∧ sent w' = sent w ++ [b] ∧
    waiting w' = waiting w ∧ ∀ n, steady w n → steady w' n;
  read_law w : ∃ w', try_read_byte w = Return (head (waiting w), w') ∧ sent w' = sent w ∧
    waiting w' = tail (waiting w) ∧ ∀ n, steady w n → steady w' n;
  sleep_law w n : steady w (S n) → ∃ w', sys_sleep 1 w = Return w' ∧ sent w' = sent w ∧
    waiting w' = waiting w ∧ steady w' n;
  tick_law w n : steady w (S n) → sent (get_tick_count w).2 = sent w ∧
    waiting (get_tick_count w).2 = waiting w ∧ steady (get_tick_count w).2 n;
  steady_weaken w n : steady w (S n) → steady w n
}.

(** What [write_str] sends for a text. *)
Definition crlf (text : list N) : list N := text ≫= λ b, if b =? 10 then [13; 10] else [b].

Lemma crlf_app a b : crlf (a ++ b) = crlf a ++ crlf b.
Proof. unfold crlf. by rewrite bind_app. Qed.

Lemma write_str_law `{LawfulPlatform W} text : ∀ w, ∃ w', serial_write_str text w = Return w' ∧
  sent w' = sent w ++ crlf text ∧ waiting w' = waiting w ∧ ∀ n, steady w n → steady w' n.
Proof.
  unfold serial_write_str. induction text as [|b text IH]; intros w; simpl.
  { exists w. by rewrite app_nil_r. }
  assert (∃ w', (w' ← (if b =? 10 then write_byte 13 w else Return w); write_byte b w') = Return w' ∧
    sent w' = sent w ++ (if b =? 10 then [13; 10] else [b]) ∧ waiting w' = waiting w ∧ ∀ n, steady w n → steady w' n)
    as (w1 & -> & Hs & Hw & Hst).
  { destruct (N.eqb_spec b 10) as [->|].
    - destruct (write_law 13 w) as (w1 & -> & Hs1 & Hw1 & Hst1). simpl.
      destruct (write_law 10 w1) as (w2 & -> & Hs2 & Hw2 & Hst2). exists w2. split_and!; [done| |congruence|auto].
      by rewrite Hs2, Hs1, <- app_assoc.
    - simpl. destruct (write_law b w) as (w1 & -> & ?). by exists w1. }
  simpl. destruct (IH w1) as (w' & -> & Hs' & Hw' & Hst'). exists w'. split_and!; [done| |congruence|auto].
  rewrite Hs', Hs, <- app_assoc. done.
Qed.

(** ** The services *)

Module ServiceSpec.
Import KernelContext.
Notation ctx := KernelContext.t.
Notation Request := KernelMessage.CommandRequest.
Notation Response := KernelMessage.CommandResponse.

(** Channel [ch] holds the messages [l]. *)
Definition holds (c : ctx) (ch : N) (l : list KernelMessage.t) : Prop :=
  ch < MAX_CHANNELS ∧ length (channels c) = 16%nat ∧
  ∃ x, channels c !! N.to_nat ch = Some x ∧ ChannelSpec.wf x ∧ ChannelSpec.contents x = l.
(** [c'] is [c] with other contents of channel [ch]. *)
Definition changes (ch : N) (c c' : ctx) : Prop :=
  ∃ chs, c' = c <| channels := chs |> ∧ ∀ ch' l, ch' ≠ ch → holds c ch' l → holds c' ch' l.

Lemma holds_insert c ch x y : ch < MAX_CHANNELS → length (channels c) = 16%nat →
  channels c !! N.to_nat ch = Some x → ChannelSpec.wf y →
  slice_set (channels c) ch y = Return (<[N.to_nat ch := y]> (channels c)) ∧
  holds (c <| channels := <[N.to_nat ch := y]> (channels c) |>) ch (ChannelSpec.contents y) ∧
  changes ch c (c <| channels := <[N.to_nat ch := y]> (channels c) |>).
Proof.
  intros Hch Hl Hx Hy. pose proof (lookup_lt_Some _ _ _ Hx). split_and!.
  - by apply slice_set_Return.
  - split_and!; [done|simpl; by rewrite length_insert|]. exists y. simpl. split_and!; [|done..]. by apply list_lookup_insert_eq.
  - eexists. split; [done|]. intros ch' l Hne (? & ? & z & Hz & ? & ?). split_and!; [done|simpl; by rewrite length_insert|].
    exists z. simpl. split_and!; try done. rewrite list_lookup_insert_ne; [done|]. lia.
Qed.

Lemma try_recv_holds c ch l : holds c ch l →
  ∃ c', try_recv ch c = Return (List.hd_error l, c') ∧ holds c' ch (List.tl l) ∧ changes ch c c' ∧
    (l = [] → c' = c).
Proof.
  intros (Hch & Hl & x & Hx & Hwf & Hc). unfold try_recv, on_channel.
  destruct (N.leb_spec MAX_CHANNELS ch); [lia|]. rewrite (proj2 (slice_get_Return _ _ _) Hx). simpl.
  destruct (ChannelSpec.recv_spec x Hwf) as (y & -> & Hwfy & Hcy & Hsame). simpl.
  destruct (holds_insert c ch x y) as (-> & Hy & Hch'); try done. simpl. rewrite Hc in *. eexists. split_and!; [done| |done|].
  - by rewrite <- Hcy.
  - intros Hnil. rewrite Hsame by done. rewrite list_insert_id by done. by destruct c.
Qed.

Lemma send_holds c ch l m : holds c ch l → (length l < 8)%nat →
  ∃ c', send ch m c = Return (Ok tt, c') ∧ holds c' ch (l ++ [m]) ∧ changes ch c c'.
Proof.
  intros (Hch & Hl & x & Hx & Hwf & Hc) Hroom. unfold send, on_channel.
  destruct (N.leb_spec MAX_CHANNELS ch); [lia|]. rewrite (proj2 (slice_get_Return _ _ _) Hx). simpl.
  destruct (ChannelSpec.send_spec m x Hwf) as (y & Hwfy & Hy). rewrite Hc, bool_decide_false in Hy by lia.
  destruct Hy as [-> Hcy]. simpl. destruct (holds_insert c ch x y) as (-> & Hy & Hch'); try done. simpl.
  eexists. split_and!; [done| |done]. by rewrite <- Hcy.
Qed.

Section with_platform.
Context {W : Type} `{LawfulPlatform W}.
Notation handle := (CommandService.handle_command (W := W)).

(** A command does not look at the channels, nor change them or the message numbers. *)
Definition reframe (chs : list Channel.t) (x : CommandResponseB.t * (ctx * W)) : CommandResponseB.t * (ctx * W) :=
  (x.1, (x.2.1 <| channels := chs |>, x.2.2)).

Lemma run_command_frame cmd chs (c : ctx) (w : W) :
  CommandService.run_command cmd (c <| channels := chs |>) w
  = (λ x, (x.1, (x.2.1 <| channels := chs |>, x.2.2))) <$> CommandService.run_command cmd c w.
Proof.
  unfold CommandService.run_command, CommandService.printed, CommandService.failed.
  repeat case_decide; simpl; try done.
  - unfold CommandService.mem_lines. simpl. destruct (allocator c) as [a|]; [|done]. by destruct (FrameAllocator.total_frames a).
  - unfold CommandService.run_alloc, CommandService.printed, CommandService.failed. simpl.
    destruct (allocator c) as [a|]; [|done]. destruct (FrameAllocator.allocate_frame a) as [[[f|] a']| |]; simpl; try done.
    destruct (BootInfo.hhdm_offset (boot c)); [|done]. by destruct (add_u64 _ _).
  - unfold CommandService.run_heap_alloc, CommandService.printed, CommandService.failed. simpl.
    destruct (heap c) as [h|]; [|done]. by destruct (BumpHeap.alloc _ _ _ h) as [[[r|] h']| |].
  - by destruct (get_tick_count w).
Qed.
Lemma handle_frame r chs (c : ctx) (w : W) :
  handle r (c <| channels := chs |>) w = reframe chs <$> handle r c w.
Proof.
  unfold CommandService.handle_command. destruct (CommandRequestB.as_str r) as [cmd|]; [|done].
  destruct (Str.trim cmd) as [|x l]; [done|]. rewrite run_command_frame.
  destruct (CommandService.run_command _ c w) as [[[lines|e] st]| |]; simpl; try done.
  by destruct (fold_outcome _ _ _).
Qed.
Lemma handle_keeps r (c : ctx) (w : W) resp c' w' : handle r c w = Return (resp, (c', w')) →
  channels c' = channels c ∧ CommandResponseB.correlation_id resp = CommandRequestB.request_id r.
Proof.
  intros E. split.
  - pose proof (handle_frame r (channels c) c w) as Hf. rewrite E in Hf.
    replace (c <| channels := channels c |>) with c in Hf by (by destruct c). rewrite E in Hf. injection Hf as Hf. by rewrite Hf.
  - unfold CommandService.handle_command in E. destruct (CommandRequestB.as_str r) as [cmd|]; [|by injection E as <- _ _].
    destruct (Str.trim cmd) as [|x l]; [by injection E as <- _ _|].
    destruct (CommandService.run_command _ c w) as [[[lines|e] st]| |]; simpl in E; try done; [|by injection E as <- _].
    destruct (fold_outcome _ _ _) as [out| |]; simpl in E; try done. by injection E as <- _.
Qed.

(** A command only looks at the machine for the ticks.  It leaves the serial port alone, needs one
    load of the counter at most, and what it does to the kernel, as well as whether it returns,
    does not depend on the machine. *)
Lemma handle_world r (c : ctx) (w : W) resp c' w' n : handle r c w = Return (resp, (c', w')) →
  steady w (S n) → sent w' = sent w ∧ waiting w' = waiting w ∧ steady w' n.
Proof.
  intros E Hst. pose proof (steady_weaken w n Hst) as Hst'. destruct (tick_law w n Hst) as (Ht1 & Ht2 & Ht3).
  assert (∀ cmd x c1 w1, CommandService.run_command cmd c w = Return (x, (c1, w1)) →
    sent w1 = sent w ∧ waiting w1 = waiting w ∧ steady w1 n) as Hrun.
  { intros cmd x c1 w1. unfold CommandService.run_command, CommandService.printed, CommandService.failed,
      CommandService.run_alloc, CommandService.run_heap_alloc, CommandService.printed, CommandService.failed.
    repeat case_decide; try done; try (by intros [= _ _ <-]).
    - by intros (l & _ & [= _ _ <-])%bind_Return.
    - destruct (allocator c); [|by intros [= _ _ <-]]. intros ([[f|] a] & _ & E1)%bind_Return; [|by injection E1 as _ _ <-].
      revert E1. destruct (BootInfo.hhdm_offset _); [|by intros [= _ _ <-]]. by intros (v & _ & [= _ _ <-])%bind_Return.
    - destruct (heap c); [|by intros [= _ _ <-]]. intros ([[f|] a] & _ & [= _ _ <-])%bind_Return; done.
    - destruct (get_tick_count w) as [t w2]. by intros [= _ _ <-]. }
  revert E. unfold CommandService.handle_command. destruct (CommandRequestB.as_str r) as [cmd|]; [|by intros [= _ _ <-]].
  destruct (Str.trim cmd) as [|x l]; [by intros [= _ _ <-]|]. intros ([[lines|e] [c1 w1]] & E1%Hrun & E2)%bind_Return.
  - apply bind_Return in E2 as (out & _ & [= _ _ <-]). done.
  - by injection E2 as _ _ <-.
Qed.
Lemma handle_any_world r (c : ctx) (w : W) resp c' w' : handle r c w = Return (resp, (c', w')) →
  ∀ w2, ∃ resp2 w2', handle r c w2 = Return (resp2, (c', w2')).
Proof.
  intros E w2.
  assert (∀ lines b, BufferSpec.wf b → ∃ b', fold_outcome (λ b line, FixedBuffer.writeln line b) lines b = Return b') as Hfold.
  { induction lines as [|l lines IH]; intros b Hb; [by exists b|].
    destruct (BufferSpec.write_str_spec (Utf8.bytes l ++ [10]) b Hb) as (b1 & Eb & Hb1 & _).
    destruct (IH b1 Hb1) as [b2 E2]. exists b2. cbn [fold_outcome]. change (FixedBuffer.writeln l b = Return b1) in Eb. by rewrite Eb. }
  assert (∀ cmd x c1 w1, CommandService.run_command cmd c w = Return (x, (c1, w1)) →
    ∃ x2 w3, CommandService.run_command cmd c w2 = Return (x2, (c1, w3))) as Hrun.
  { intros cmd x c1 w1. unfold CommandService.run_command, CommandService.printed, CommandService.failed,
      CommandService.run_alloc, CommandService.run_heap_alloc, CommandService.printed, CommandService.failed.
    repeat case_decide; try done; try (intros [= _ <- _]; by eexists _, _).
    - intros (l & -> & [= _ <- _])%bind_Return. by eexists _, _.
    - destruct (allocator c); [|intros [= _ <- _]; by eexists _, _].
      intros ([[f|] a] & -> & E1)%bind_Return; [|injection E1 as _ <- _; by eexists _, _]. cbn [mbind outcome_bind].
      revert E1. destruct (BootInfo.hhdm_offset _); [|intros [= _ <- _]; by eexists _, _].
      intros (v & -> & [= _ <- _])%bind_Return. by eexists _, _.
    - destruct (heap c); [|intros [= _ <- _]; by eexists _, _]. intros ([[f|] a] & -> & [= _ <- _])%bind_Return; by eexists _, _.
    - destruct (get_tick_count w), (get_tick_count w2). intros [= _ <- _]. by eexists _, _. }
  revert E. unfold CommandService.handle_command. destruct (CommandRequestB.as_str r) as [cmd|]; [|intros [= _ <- _]; by eexists _, _].
  destruct (Str.trim cmd) as [|x l]; [intros [= _ <- _]; by eexists _, _|]. intros ([y [c1 w1]] & E1 & E2)%bind_Return.
  assert (c1 = c') as -> by (destruct y; [by apply bind_Return in E2 as (out & _ & [= _ <- _])|by injection E2 as _ <- _]).
  apply Hrun in E1 as (y2 & w3 & ->). cbn [mbind outcome_bind]. destruct y2 as [lines|e]; [|by eexists _, _].
  destruct (Hfold lines (FixedBuffer.new RESPONSE_MAX)) as [b ->]; [done|]. by eexists _, _.
Qed.

(** The answers to requests handled one after the other. *)
Fixpoint answer_all (rs : list CommandRequestB.t) (c : ctx) (w : W) : outcome (list CommandResponseB.t * (ctx * W)) :=
  match rs with
  | [] => Return ([], (c, w))
  | r :: rs =>
      '(resp, (c, w)) ← handle r c w;
      '(resps, st) ← answer_all rs c w;
      Return (resp :: resps, st)
  end.
Lemma answer_all_frame rs : ∀ chs (c : ctx) (w : W),
  answer_all rs (c <| channels := chs |>) w
  = (λ x, (x.1, (x.2.1 <| channels := chs |>, x.2.2))) <$> answer_all rs c w.
Proof.
  induction rs as [|r rs IH]; intros chs c w; simpl; [done|]. rewrite handle_frame.
  destruct (handle r c w) as [[resp [c1 w1]]| |]; simpl; try done. rewrite IH.
  by destruct (answer_all rs c1 w1) as [[resps st]| |].
Qed.

(** The loop of the command service answers what waits. *)
Lemma serve_answers cmd rep : cmd ≠ rep → ∀ rs fuel old p (c : ctx) (w : W) resps c1 w1,
  (length rs < fuel)%nat → holds c cmd (Request <$> rs) → Forall (λ r, CommandRequestB.reply_channel r = rep) rs →
  holds c rep old → (length old + length rs ≤ 8)%nat → answer_all rs c w = Return (resps, (c1, w1)) →
  ∃ c', CommandService.serve fuel cmd p c w = Return (p || bool_decide (rs ≠ []), (c', w1)) ∧
    holds c' cmd [] ∧ holds c' rep (old ++ (Response <$> resps)) ∧ c' = c1 <| channels := channels c' |> ∧
    ∀ ch l, ch ≠ cmd → ch ≠ rep → holds c ch l → holds c' ch l.
Proof.
  intros Hne. induction rs as [|r rs IH]; intros fuel old p c w resps c1 w1 Hf Hcmd Hrep Hold Hl Ea;
    (destruct fuel as [|fuel]; [simpl in Hf; lia|]); simpl.
  - injection Ea as <- <- <-. destruct (try_recv_holds c cmd _ Hcmd) as (c2 & -> & _ & _ & Hsame). simpl.
    rewrite Hsame by done. rewrite orb_false_r. exists c. rewrite app_nil_r. split_and!; try done. by destruct c.
  - destruct (try_recv_holds c cmd _ Hcmd) as (c2 & -> & Hcmd2 & (chs2 & -> & Hoth2) & _). simpl in *.
    destruct (handle r c w) as [[resp [c3 w3]]| |] eqn:Eh; simpl in Ea; try done.
    rewrite handle_frame, Eh. simpl. apply Forall_cons in Hrep as [-> Hrep].
    destruct (answer_all rs c3 w3) as [[resps' [c4 w4]]| |] eqn:Ea'; simpl in Ea; try done. injection Ea as <- <- <-.
    assert (∀ ch l, holds (c <| channels := chs2 |>) ch l → holds (c3 <| channels := chs2 |>) ch l) as Hview by done.
    destruct (send_holds (c3 <| channels := chs2 |>) rep old (Response resp)) as (c5 & -> & Hrep5 & (chs5 & -> & Hoth5)).
    { apply Hview. by apply Hoth2. } { simpl in Hl. lia. }
    simpl. destruct (IH fuel (old ++ [Response resp]) true (c3 <| channels := chs5 |>) w3 resps' (c4 <| channels := chs5 |>) w4)
      as (c' & E & Hc1 & Hc2 & Hc3 & Hc4).
    + simpl in Hf. lia.
    + apply Hoth5; [done|]. by apply Hview.
    + done.
    + done.
    + rewrite length_app. simpl in *. lia.
    + by rewrite answer_all_frame, Ea'.
    + rewrite orb_true_r. exists c'. split_and!; try done.
      * by rewrite <- app_assoc in Hc2.
      * intros ch l H1 H2 Hh. apply Hc4; [done..|]. apply Hoth5; [done|]. apply Hview. by apply Hoth2.
Qed.

Lemma answers_carry_ids rs : ∀ (c : ctx) (w : W) resps st, answer_all rs c w = Return (resps, st) →
  CommandResponseB.correlation_id <$> resps = CommandRequestB.request_id <$> rs.
Proof.
  induction rs as [|r rs IH]; intros c w resps st; simpl; [by intros [= <- _]|].
  destruct (handle r c w) as [[resp [c1 w1]]| |] eqn:Eh; simpl; try done.
  destruct (answer_all rs c1 w1) as [[resps' st']| |] eqn:Ea; simpl; try done. intros [= <- <-].
  rewrite !fmap_cons, (IH _ _ _ _ Ea). f_equal. by eapply handle_keeps.
Qed.

#[local] Arguments CommandService.serve : simpl never.

(** A poll of the command service: it lets the machine go on, and answers what waits there. *)
Lemma poll_runs s rs old rep (c : ctx) (w : W) n :
  CommandService.poll_count s < u64_max → steady w (S n) → CommandService.command_channel s ≠ rep →
  holds c (CommandService.command_channel s) (Request <$> rs) →
  Forall (λ r, CommandRequestB.reply_channel r = rep) rs → holds c rep old → (length old + length rs ≤ 8)%nat →
  ∃ w', steady w' n ∧ sent w' = sent w ∧ waiting w' = waiting w ∧
    ∀ resps c1 w1, answer_all rs c w' = Return (resps, (c1, w1)) →
    ∃ s' c', CommandService.poll s c w = Return (bool_decide (rs ≠ []), s', (c', w1)) ∧
    CommandService.command_channel s' = CommandService.command_channel s ∧
    CommandService.poll_count s' = CommandService.poll_count s + 1 ∧
    holds c' (CommandService.command_channel s) [] ∧ holds c' rep (old ++ (Response <$> resps)) ∧
    c' = c1 <| channels := channels c' |> ∧
    CommandResponseB.correlation_id <$> resps = CommandRequestB.request_id <$> rs ∧
    ∀ ch l, ch ≠ CommandService.command_channel s → ch ≠ rep → holds c ch l → holds c' ch l.
Proof.
  intros Hpc Hst Hne Hcmd Hrep Hold Hl. unfold CommandService.poll. generalize (eq_refl 17%nat). generalize 17%nat at 1 3.
  intros fuel Hfuel.
  assert (∃ w', (if CommandService.poll_count s mod 2 =? 0 then Return (sys_yield w) else sys_sleep 1 w) = Return w' ∧
    steady w' n ∧ sent w' = sent w ∧ waiting w' = waiting w) as (w' & -> & Hst' & Hs' & Hw').
  { destruct (_ =? 0). - exists w. split_and!; try done. by apply steady_weaken.
    - destruct (sleep_law w n Hst) as (w' & -> & ? & ? & ?). by exists w'. }
  exists w'. split_and!; try done. intros resps c1 w1 Ha.
  simpl. rewrite (proj2 (add_u64_Return _ _ (CommandService.poll_count s + 1))) by (unfold u64_max in *; lia). simpl.
  assert (length rs < fuel)%nat as Hf by lia. clear Hfuel.
  destruct (serve_answers _ rep Hne rs fuel old false c w' resps c1 w1 Hf Hcmd Hrep Hold Hl Ha)
    as (c' & -> & Hc1 & Hc2 & Hc3 & Hc4).
  simpl. eexists _, c'. split_and!; try done. by eapply answers_carry_ids.
Qed.
(** Every request is answered once and in order.  When [rs] are the requests that wait for
    the command service, with one reply channel that has room for the answers, a poll of the
    service takes them all, puts one response for each behind what the reply channel held, in
    the order of the requests and with their numbers, and leaves every other channel alone. *)
Theorem requests_are_answered_in_order s rs old rep (c : ctx) (w : W) n resps c1 :
  CommandService.poll_count s < u64_max → steady w (S n) → CommandService.command_channel s ≠ rep →
  holds c (CommandService.command_channel s) (Request <$> rs) →
  Forall (λ r, CommandRequestB.reply_channel r = rep) rs → holds c rep old → (length old + length rs ≤ 8)%nat →
  (∀ w, answer_all rs c w = Return (resps, (c1, w))) →
  ∃ s' c' w', CommandService.poll s c w = Return (bool_decide (rs ≠ []), s', (c', w')) ∧
    sent w' = sent w ∧ waiting w' = waiting w ∧
    holds c' (CommandService.command_channel s) [] ∧ holds c' rep (old ++ (Response <$> resps)) ∧
    CommandResponseB.correlation_id <$> resps = CommandRequestB.request_id <$> rs ∧
    ∀ ch l, ch ≠ CommandService.command_channel s → ch ≠ rep → holds c ch l → holds c' ch l.
Proof.
  intros Hpc Hst Hne Hcmd Hrep Hold Hl Ha.
  destruct (poll_runs s rs old rep c w n Hpc Hst Hne Hcmd Hrep Hold Hl) as (w' & _ & Hs & Hw & Hrun).
  destruct (Hrun resps c1 w' (Ha w')) as (s' & c' & E & H').
  exists s', c', w'. by destruct_and! H'; split_and!.
Qed.

(** *** The console *)

(** What the console prints for a response. *)
Definition rendered (r : CommandResponseB.t) : list N :=
  match CommandResponseB.status r with
  | CommandResponseB.StatusOk =>
      match CommandResponseB.output_str r with Some out => crlf out ++ crlf [13; 10] | None => [] end
  | CommandResponseB.StatusError e =>
      crlf (Utf8.bytes "error: ")
      ++ crlf (default (Utf8.bytes "invalid error") (CommandErrorB.as_str e)) ++ crlf [13; 10]
  end.
Definition prompt : list N := [62; 32].

Lemma render_law r (w : W) : ∃ w', ConsoleService.render_response r w = Return w' ∧
  sent w' = sent w ++ rendered r ∧ waiting w' = waiting w ∧ ∀ n, steady w n → steady w' n.
Proof.
  unfold ConsoleService.render_response, rendered. destruct (CommandResponseB.status r) as [|e].
  - destruct (CommandResponseB.output_str r) as [out|]; [|exists w; by rewrite app_nil_r].
    destruct (write_str_law out w) as (w1 & -> & Hs1 & Hw1 & Ht1). simpl.
    destruct (write_str_law [13; 10] w1) as (w2 & -> & Hs2 & Hw2 & Ht2). exists w2.
    split_and!; [done| |congruence|auto]. by rewrite Hs2, Hs1, <- app_assoc.
  - destruct (write_str_law (Utf8.bytes "error: ") w) as (w1 & -> & Hs1 & Hw1 & Ht1). cbn [mbind outcome_bind].
    assert (∃ w2, match CommandErrorB.as_str e with
        | Some msg => serial_write_str msg w1 | None => serial_write_str (Utf8.bytes "invalid error") w1 end = Return w2 ∧
      sent w2 = sent w1 ++ crlf (default (Utf8.bytes "invalid error") (CommandErrorB.as_str e)) ∧
      waiting w2 = waiting w1 ∧ ∀ n, steady w1 n → steady w2 n) as (w2 & -> & Hs2 & Hw2 & Ht2).
    { destruct (CommandErrorB.as_str e) as [msg|]; apply write_str_law. }
    cbn [mbind outcome_bind]. destruct (write_str_law [13; 10] w2) as (w3 & -> & Hs3 & Hw3 & Ht3). exists w3.
    split_and!; [done| |congruence|auto]. by rewrite Hs3, Hs2, Hs1, <- !app_assoc.
Qed.

(** The loop over the response channel prints what waits. *)
Lemma drain_prints resps : ∀ fuel p s (c : ctx) (w : W), (length resps < fuel)%nat →
  holds c (ConsoleService.response_channel s) (Response <$> resps) →
  ∃ s' c' w', ConsoleService.drain fuel p s c w = Return (p || bool_decide (resps ≠ []), s', (c', w')) ∧
    s' = s <| ConsoleService.awaiting_response := ConsoleService.awaiting_response s' |> ∧
    holds c' (ConsoleService.response_channel s) [] ∧ changes (ConsoleService.response_channel s) c c' ∧
    sent w' = sent w ++ (resps ≫= λ r, rendered r ++ prompt) ∧ waiting w' = waiting w ∧
    ∀ n, steady w n → steady w' n.
Proof.
  induction resps as [|r resps IH]; intros fuel p s c w Hf Hh; (destruct fuel as [|fuel]; [simpl in Hf; lia|]); simpl.
  - destruct (try_recv_holds c _ _ Hh) as (c2 & -> & _ & _ & Hsame). simpl. rewrite Hsame by done.
    exists s, c, w. rewrite orb_false_r, app_nil_r. split_and!; try done; [by destruct s|].
    exists (channels c). split; [by destruct c|done].
  - destruct (try_recv_holds c _ _ Hh) as (c2 & -> & Hh2 & (chs2 & -> & Ho2) & _). simpl in *.
    destruct (render_law r w) as (w1 & -> & Hs1 & Hw1 & Ht1). simpl.
    destruct (write_str_law prompt w1) as (w2 & E2 & Hs2 & Hw2 & Ht2). unfold prompt in E2. rewrite E2. simpl.
    destruct (IH fuel true (s <| ConsoleService.awaiting_response := false |>) (c <| channels := chs2 |>) w2)
      as (s' & c' & w' & -> & Es & Hc & (chs & -> & Ho) & Hs & Hw & Ht); [lia|done|].
    rewrite orb_true_r. eexists _, _, w'. split_and!; try done; [| |congruence|auto].
    + exists chs. split; [done|]. intros ch l Hne Hl. apply Ho; [done|]. by apply Ho2.
    + rewrite Hs, Hs2, Hs1. change (crlf prompt) with prompt. by rewrite <- !app_assoc.
Qed.
End with_platform.
End ServiceSpec.

(** ** A machine

    A serial controller that is always ready, behind the driver of the sources, and a counter
    that advances at each load. *)

Module Machine.
Record uart := { tx : list N; rx : list N }.
Definition status (u : uart) : N := match rx u with [] => 0x20 | _ => 0x21 end.
#[global] Instance uart_ports : PortIo uart := {|
  inb port u :=
    Return (if port =? SerialPort.COM1 + 5 then (status u, u)
            else if port =? SerialPort.COM1 then (default 0 (head (rx u)), {| tx := tx u; rx := tail (rx u) |})
            else (0xFF, u));
  outb port v u :=
    Return (if port =? SerialPort.COM1 then {| tx := tx u ++ [v]; rx := rx u |} else u)
|}.
Record t := mk { line : uart; clock : N }.
Definition port (m : t) : SerialPort.t uart := SerialPort.mk SerialPort.COM1 (line m) 1.
#[global] Instance serial : SerialLine t := {|
  write_byte b m := s ← SerialPort.port_write_byte b (port m); Return (mk (SerialPort.ports s) (clock m));
  try_read_byte m :=
    '(o, s) ← SerialPort.port_try_read_byte (port m); Return (o, mk (SerialPort.ports s) (clock m))
|}.
#[global] Instance platform : Platform t := {|
  get_tick_count m := (clock m, mk (line m) (clock m + 1));
  patience := 2
|}.
(** The driver on a ready controller delivers. *)
#[global] Instance lawful : LawfulPlatform t.
Proof.
  refine {| sent m := tx (line m); waiting m := rx (line m);
            steady m n := clock m + 2 * N.of_nat n ≤ u64_max |}.
  - intros b [[t r] c]. simpl. unfold SerialPort.port_write_byte, status. simpl. destruct r; by eexists.
  - intros [[t r] c]. simpl. unfold SerialPort.port_try_read_byte, status. simpl. destruct r; by eexists.
  - intros [u c] n Hn. simpl in *. unfold sys_sleep. simpl.
    rewrite (proj2 (add_u64_Return c 1 (c + 1))) by lia. simpl.
    destruct (N.ltb_spec (c + 1) (c + 1)); [lia|]. eexists. split_and!; try done. simpl. lia.
  - intros [u c] n Hn. simpl in *. split_and!; [done|done|lia].
  - intros m n Hn. simpl in *. lia.
Defined.
End Machine.

Module ServiceExample.
Import ServiceSpec.
Definition sample_context : KernelContext.t :=
  KernelContext.mk BootInfo.empty None None (replicate 16 Channel.new) 1.
Definition sample_request (id : N) (text : string) : CommandRequestB.t :=
  CommandRequestB.mk SchemaVersionB.COMMAND_SCHEMA_VERSION id 1 (len (Utf8.bytes text))
    (copy_prefix (len (Utf8.bytes text)) (Utf8.bytes text) (replicate 64 0)).
Definition loaded (rs : list CommandRequestB.t) : outcome KernelContext.t :=
  fold_outcome (λ c r, '(_, c) ← KernelContext.send 0 (KernelMessage.CommandRequest r) c; Return c) rs sample_context.
Definition requests : list CommandRequestB.t := [sample_request 7 "help"; sample_request 8 "nonsense"].
Definition answers : list CommandResponseB.t :=
  let text := Utf8.bytes "commands: help, halt, boot, mem, alloc, heap, heap-alloc, ticks" ++ [10] in
  [CommandResponseB.ok 7 (FixedBuffer.mk (text ++ replicate (256 - length text) 0) (len text));
   CommandResponseB.error 8 (CommandErrorB.new CommandErrorB.InvalidCommand "unknown command")].

Lemma sample_holds ch : ch < 16 → holds sample_context ch [].
Proof.
  intros Hch. split_and!; [done|done|]. exists Channel.new. split_and!; [|apply ChannelSpec.channel_new_wf..].
  apply lookup_replicate_2. lia.
Qed.

Lemma requests_are_answered_in_order_witness :
  ∃ c resps s' c' w', loaded requests = Return c ∧
    CommandService.poll (CommandService.new 0) c (Machine.mk {| Machine.tx := []; Machine.rx := [] |} 0)
      = Return (true, s', (c', w')) ∧
    holds c' 1 ([] ++ (Response <$> resps)) ∧ CommandResponseB.correlation_id <$> resps = [7; 8].
Proof.
  destruct (send_holds sample_context 0 [] (Request (sample_request 7 "help"))) as (c1 & E1 & H1 & (chs1 & -> & O1));
    [apply sample_holds; lia|simpl; lia|].
  destruct (send_holds (sample_context <| KernelContext.channels := chs1 |>) 0 [Request (sample_request 7 "help")]
    (Request (sample_request 8 "nonsense"))) as (c2 & E2 & H2 & (chs2 & -> & O2)); [exact H1|simpl; lia|].
  assert (∀ w : Machine.t, answer_all requests (sample_context <| KernelContext.channels := chs2 |>) w
    = Return (answers, (sample_context <| KernelContext.channels := chs2 |>, w))) as Ha.
  { intros w. rewrite answer_all_frame. assert (answer_all requests sample_context w = Return (answers, (sample_context, w))) as ->;
      [vm_compute; reflexivity|reflexivity]. }
  destruct (requests_are_answered_in_order (CommandService.new 0) requests [] 1
    (sample_context <| KernelContext.channels := chs2 |>)
    (Machine.mk {| Machine.tx := []; Machine.rx := [] |} 0) 0 answers (sample_context <| KernelContext.channels := chs2 |>))
    as (s' & c' & w' & Ep & _ & _ & _ & Hr & Hid & _).
  - by vm_compute.
  - by vm_compute.
  - by vm_compute.
  - exact H2.
  - repeat constructor.
  - apply O2; [done|]. apply O1; [done|]. apply sample_holds. lia.
  - simpl. lia.
  - exact Ha.
  - exists (sample_context <| KernelContext.channels := chs2 |>), answers, s', c', w'. split_and!; [|exact Ep|exact Hr|exact Hid].
    unfold loaded, requests. cbn [fold_outcome]. rewrite E1. cbn [mbind outcome_bind]. rewrite E2. reflexivity.
Defined.
End ServiceExample.
