(* ===== verification/BareSession.v ===== *)
(** * A session at the bare-metal console

    The kernel with its two tasks as the user sees it: bytes typed at the serial console are
    echoed, a line is sent to the command service, and its answer is printed. *)

From S2P Require Import Prelude Debug Editor Input Text BareMem BareIo BareKernel BareKernelProps.
Open Scope list_scope.
Open Scope N_scope.

Module SessionSpec.
Import ServiceSpec BootKernel.
Notation ctx := KernelContext.t.
#[local] Arguments ConsoleService.drain : simpl never.
#[local] Arguments CommandService.serve : simpl never.

(** The request that the console makes of a line. *)
Definition request_of (line : list N) (id : N) : CommandRequestB.t :=
  CommandRequestB.mk SchemaVersionB.COMMAND_SCHEMA_VERSION id 1 (len line)
    (copy_prefix (len line) line (replicate (N.to_nat COMMAND_MAX) 0)).

(** The console with a line being typed. *)
Definition console_ok (line : list N) (s : ConsoleService.t) : Prop :=
  ConsoleService.command_channel s = 0 ∧ ConsoleService.response_channel s = 1 ∧
  length (ConsoleService.buffer s) = 64%nat ∧ ConsoleService.len s = len line ∧
  take (length line) (ConsoleService.buffer s) = line ∧ (length line ≤ 64)%nat.

(** The kernel between two turns: the command service is task 0, the console task 1, and task
    [cur] is next; [cmds] and [resps] wait on the two channels, [line] is being typed, the
    command service can be polled [n] more times, and apart from the channels the tasks see
    [base]. *)
Record ready (cur : N) (cmds : list CommandRequestB.t) (resps : list CommandResponseB.t) (line : list N)
    (n : nat) (base : ctx) (k : BootKernel.t) : Prop := {
  ready_scheduler : ∃ order, scheduler k = CooperativeScheduler.mk order 2 cur ∧
    order !! 0%nat = Some 0 ∧ order !! 1%nat = Some 1;
  ready_command : ∃ i d t s, tasks k !! 0%nat = Some (Some (TaskSlot.mk i d t (TaskKind.Command s))) ∧
    CommandService.command_channel s = 0 ∧ CommandService.poll_count s + N.of_nat n ≤ u64_max;
  ready_console : ∃ i d t s, tasks k !! 1%nat = Some (Some (TaskSlot.mk i d t (TaskKind.Console s))) ∧
    console_ok line s;
  ready_cmds : holds (context k) 0 (Request <$> cmds);
  ready_resps : holds (context k) 1 (Response <$> resps);
  ready_base : ∃ chs, context k = base <| KernelContext.channels := chs |>
}.

Section with_platform.
Context {W : Type} `{LawfulPlatform W}.

Lemma next_turn (k : BootKernel.t) order cur : cur < 2 → scheduler k = CooperativeScheduler.mk order 2 cur →
  order !! 0%nat = Some 0 → order !! 1%nat = Some 1 →
  CooperativeScheduler.next_task (scheduler k)
  = Return (Some cur, CooperativeScheduler.mk order 2 (1 - cur)).
Proof.
  intros Hc -> Ho0 Ho1. unfold CooperativeScheduler.next_task. simpl.
  assert (slice_get order cur = Return cur) as ->.
  { apply slice_get_Return. assert (cur = 0 ∨ cur = 1) as [->| ->] by lia; done. }
  simpl. do 3 f_equal. assert (cur = 0 ∨ cur = 1) as [->| ->] by lia; done.
Qed.

(** A turn of the task whose number is [cur]. *)
Lemma turn (k : BootKernel.t) (w : W) order cur slot : cur < 2 → scheduler k = CooperativeScheduler.mk order 2 cur →
  order !! 0%nat = Some 0 → order !! 1%nat = Some 1 → tasks k !! N.to_nat cur = Some (Some slot) →
  run_once k w =
    '(progressed, task, (c, w)) ← TaskSlot.poll slot (context k) w;
    Return (progressed, (with_context c
      (mk (boot k) (allocator k) (heap k) (channels k) (channel_count k) (next_message_id k)
         (CooperativeScheduler.mk order 2 (1 - cur)) (<[N.to_nat cur := Some task]> (tasks k))), w)).
Proof.
  intros Hc Hs Ho0 Ho1 Ht. unfold run_once. rewrite (next_turn k order cur) by done. cbn [mbind outcome_bind].
  change (tasks (k <| scheduler := CooperativeScheduler.mk order 2 (1 - cur) |>)) with (tasks k). rewrite Ht. done.
Qed.

(** The command service's turn; [w0] is the machine when the commands are handled. *)
Lemma command_turn cmds line n m base base' k (w : W) :
  ready 0 cmds [] line (S n) base k → Forall (λ r, CommandRequestB.reply_channel r = 1) cmds →
  (length cmds ≤ 8)%nat → steady w (S m) →
  (∀ w0 : W, ∃ resps w1, answer_all cmds base w0 = Return (resps, (base', w1))) →
  ∃ p k' w0 resps w', run_once k w = Return (p, (k', w')) ∧ ready 1 [] resps line n base' k' ∧
    answer_all cmds base w0 = Return (resps, (base', w')) ∧
    steady w0 m ∧ sent w0 = sent w ∧ waiting w0 = waiting w.
Proof.
  intros [(order & Hs & Ho0 & Ho1) (i & d & t & s & Ht & Hch & Hpc) Hcon Hcmds Hresps (chs & Hbase)] Hrep Hlen Hst Ha.
  rewrite (turn k w order 0 _ eq_refl Hs Ho0 Ho1 Ht). unfold TaskSlot.poll, TaskKind.poll. cbn [TaskSlot.kind].
  destruct (poll_runs s cmds [] 1 (context k) w m) as (w0 & Hst0 & Hs0 & Hw0 & Hrun); rewrite ?Hch; try done; [lia|].
  destruct (Ha w0) as (resps & w' & Ha0).
  destruct (Hrun resps (base' <| KernelContext.channels := chs |>) w')
    as (s' & c' & -> & Hch' & Hpc' & Hc1 & Hc2 & Hc3 & _ & _); [by rewrite Hbase, answer_all_frame, Ha0|].
  simpl. eexists _, _, w0, resps, w'. split; [done|]. split_and!; try done. rewrite Hch in Hc1.
  split; simpl.
  - by exists order.
  - eexists i, d, _, s'. rewrite list_lookup_insert_eq by (by apply lookup_lt_Some in Ht). split_and!; [done|congruence|lia].
  - destruct Hcon as (i' & d' & t' & s'' & Hcon & ?). exists i', d', t', s''.
    by rewrite list_lookup_insert_ne.
  - destruct c'. done.
  - destruct c'. done.
  - exists (KernelContext.channels c'). destruct c'. simpl in *. by injection Hc3 as -> -> -> ->.
Qed.
(** With nothing to do. *)
Lemma idle_turn line n m base k (w : W) : ready 0 [] [] line (S n) base k → steady w (S m) →
  ∃ p k' w', run_once k w = Return (p, (k', w')) ∧ ready 1 [] [] line n base k' ∧
    steady w' m ∧ sent w' = sent w ∧ waiting w' = waiting w.
Proof.
  intros Hr Hst. destruct (command_turn [] line n m base base k w Hr) as (p & k' & w0 & resps & w' & E & Hr' & Ha & Hw0);
    [constructor|simpl; lia|done|by eexists _, _|].
  cbn [answer_all] in Ha. injection Ha as <- <-. by exists p, k', w0.
Qed.

(** The console's turn: it prints the answers that wait, then takes a byte. *)
Lemma console_polls resps s (c : ctx) (w : W) byte rest : waiting w = byte :: rest →
  (length resps ≤ 8)%nat → ConsoleService.response_channel s = 1 → holds c 1 (Response <$> resps) →
  ∃ s1 c1 w1, ConsoleService.poll s c w = ('(s, st) ← ConsoleService.accept_byte byte s1 c1 w1; Return (true, s, st)) ∧
    s1 = s <| ConsoleService.awaiting_response := ConsoleService.awaiting_response s1 |> ∧
    holds c1 1 [] ∧ changes 1 c c1 ∧
    sent w1 = sent w ++ (resps ≫= λ r, rendered r ++ prompt) ∧ waiting w1 = rest ∧
    ∀ n, steady w n → steady w1 n.
Proof.
  intros Hw Hl Hch Hh. unfold ConsoleService.poll. generalize (eq_refl 9%nat). generalize 9%nat at 1 3. intros fuel Hfuel.
  assert (length resps < fuel)%nat as Hf by lia. clear Hfuel.
  rewrite <- Hch in Hh. destruct (drain_prints resps fuel false s c w Hf Hh) as (s1 & c1 & w1 & -> & Es & Hc & Hch1 & Hs1 & Hw1 & Ht1).
  cbn [mbind outcome_bind]. destruct (read_law w1) as (w2 & -> & Hs2 & Hw2 & Ht2). rewrite Hw1, Hw in *. simpl.
  rewrite Hch in *. exists s1, c1, w2. split_and!; try done; [congruence|auto].
Qed.

(** *** Bytes *)

Definition plain (b : N) : Prop := b ≠ 13 ∧ b ≠ 10 ∧ b ≠ 8 ∧ b ≠ 127.

Lemma type_byte line s (c : ctx) (w : W) b : console_ok line s → (length line < 64)%nat → plain b →
  ∃ s' w', ConsoleService.accept_byte b s c w = Return (s', (c, w')) ∧ console_ok (line ++ [b]) s' ∧
    sent w' = sent w ++ [b] ∧ waiting w' = waiting w ∧ ∀ n, steady w n → steady w' n.
Proof.
  intros (Hc & Hr & Hb & Hl & Ht & Hle) Hroom (H13 & H10 & H8 & H127). unfold ConsoleService.accept_byte.
  destruct (N.eqb_spec b 13), (N.eqb_spec b 10), (N.eqb_spec b 8), (N.eqb_spec b 127); try done. simpl orb. cbv iota.
  unfold len in *. rewrite Hl, Hb. rewrite (proj2 (N.ltb_lt _ _)) by lia.
  rewrite (proj2 (slice_set_Return _ _ b _)) by (split; [lia|done]). cbn [mbind outcome_bind].
  destruct (write_law b w) as (w' & -> & Hs & Hw & Hst). cbn [mbind outcome_bind]. eexists _, w'. split; [done|].
  split; [|done]. split_and!; simpl; try done.
  - by rewrite length_insert.
  - rewrite Hl. unfold len. rewrite length_app. simpl. lia.
  - rewrite length_app, Nat.add_1_r, Nat2N.id. erewrite take_S_r; [|apply list_lookup_insert_eq; lia].
    rewrite take_insert_ge by lia. by rewrite Ht.
  - rewrite length_app. simpl. lia.
Qed.

Lemma press_enter line s (c : ctx) (w : W) : console_ok line s → holds c 0 [] →
  ∃ s' c' w', ConsoleService.accept_byte 13 s c w = Return (s', (c', w')) ∧ console_ok [] s' ∧
    holds c' 0 [Request (request_of line (KernelContext.next_message_id c))] ∧
    changes 0 (c <| KernelContext.next_message_id := saturating_add (KernelContext.next_message_id c) 1 |>) c' ∧
    sent w' = sent w ++ [13; 13; 10] ∧ waiting w' = waiting w ∧ ∀ n, steady w n → steady w' n.
Proof.
  intros (Hc & Hr & Hb & Hl & Ht & Hle) Hh. unfold ConsoleService.accept_byte. simpl orb. cbv iota.
  destruct (write_str_law [13; 10] w) as (w1 & -> & Hs & Hw & Hst). cbn [mbind outcome_bind].
  unfold ConsoleService.submit_command, KernelContext.take_message_id. rewrite Hl. unfold len at 1. rewrite Nat2N.id, Ht.
  assert (CommandRequestB.from_bytes line (KernelContext.next_message_id c) (ConsoleService.response_channel s)
    = Some (request_of line (KernelContext.next_message_id c))) as ->.
  { unfold CommandRequestB.from_bytes, COMMAND_MAX, len in *. destruct (N.ltb_spec 64 (N.of_nat (length line))); [lia|].
    by rewrite Hr. }
  rewrite Hc. set (c1 := c <| KernelContext.next_message_id := _ |>).
  destruct (send_holds c1 0 [] (Request (request_of line (KernelContext.next_message_id c)))) as (c' & -> & Hh' & Hch); [exact Hh|simpl; lia|].
  cbn. eexists _, c', w1. split; [done|]. split_and!; try done. split_and!; simpl; try done; lia.
Qed.

(** *** Turns of the console *)

Notation shown resps := (resps ≫= λ r, rendered r ++ prompt).

Lemma ready_with_context cur cmds resps line n base k c' order i d t s :
  (∃ i d t s, tasks k !! 0%nat = Some (Some (TaskSlot.mk i d t (TaskKind.Command s))) ∧
    CommandService.command_channel s = 0 ∧ CommandService.poll_count s + N.of_nat n ≤ u64_max) →
  (1 < length (tasks k))%nat → order !! 0%nat = Some 0 → order !! 1%nat = Some 1 → console_ok line s →
  holds c' 0 (Request <$> cmds) → holds c' 1 (Response <$> resps) → (∃ chs, c' = base <| KernelContext.channels := chs |>) →
  ready cur cmds resps line n base (with_context c'
    (mk (boot k) (allocator k) (heap k) (channels k) (channel_count k) (next_message_id k)
       (CooperativeScheduler.mk order 2 cur) (<[1%nat := Some (TaskSlot.mk i d t (TaskKind.Console s))]> (tasks k)))).
Proof.
  intros Hcmd Hl Ho0 Ho1 Hok Hc0 Hc1 (chs & ->). split; simpl.
  - by exists order.
  - destruct Hcmd as (i' & d' & t' & s' & Ht' & ?). exists i', d', t', s'. by rewrite list_lookup_insert_ne.
  - exists i, d, t, s. split; [by apply list_lookup_insert_eq|done].
  - exact Hc0.
  - exact Hc1.
  - by exists chs.
Qed.

(** The console prints what waits for it and takes a plain byte. *)
Lemma console_turn_byte resps line n base k (w : W) b rest : ready 1 [] resps line n base k →
  (length resps ≤ 8)%nat → waiting w = b :: rest → plain b → (length line < 64)%nat →
  ∃ p k' w', run_once k w = Return (p, (k', w')) ∧ ready 0 [] [] (line ++ [b]) n base k' ∧
    sent w' = sent w ++ shown resps ++ [b] ∧ waiting w' = rest ∧ ∀ m, steady w m → steady w' m.
Proof.
  intros [(order & Hs & Ho0 & Ho1) Hcmd (i & d & t & s & Ht & Hok) Hc0 Hc1 (chs & Hbase)] Hl Hw Hb Hroom.
  rewrite (turn k w order 1 _ eq_refl Hs Ho0 Ho1 Ht). unfold TaskSlot.poll, TaskKind.poll. cbn [TaskSlot.kind].
  destruct (console_polls resps s (context k) w b rest Hw Hl (proj1 (proj2 Hok)) Hc1)
    as (s1 & c1 & w1 & -> & Es & Hr1 & (chs1 & Ec1 & Hoth) & Hs1 & Hw1 & Ht1).
  assert (console_ok line s1) as Hok1 by (rewrite Es; exact Hok).
  destruct (type_byte line s1 c1 w1 b Hok1 Hroom Hb) as (s2 & w2 & -> & Hok2 & Hs2 & Hw2 & Ht2).
  cbn [mbind outcome_bind]. eexists _, _, w2. split; [done|]. split_and!; [|by rewrite Hs2, Hs1, <- app_assoc|congruence|auto].
  apply ready_with_context; try done.
  - by apply lookup_lt_Some in Ht.
  - by apply Hoth.
  - exists chs1. rewrite Ec1, Hbase. done.
Qed.

(** ... or the end of the line. *)
Lemma console_turn_enter resps line n base k (w : W) rest : ready 1 [] resps line n base k →
  (length resps ≤ 8)%nat → waiting w = 13 :: rest →
  ∃ p k' w', run_once k w = Return (p, (k', w')) ∧
    ready 0 [request_of line (KernelContext.next_message_id base)] [] [] n
      (base <| KernelContext.next_message_id := saturating_add (KernelContext.next_message_id base) 1 |>) k' ∧
    sent w' = sent w ++ shown resps ++ [13; 13; 10] ∧ waiting w' = rest ∧ ∀ m, steady w m → steady w' m.
Proof.
  intros [(order & Hs & Ho0 & Ho1) Hcmd (i & d & t & s & Ht & Hok) Hc0 Hc1 (chs & Hbase)] Hl Hw.
  rewrite (turn k w order 1 _ eq_refl Hs Ho0 Ho1 Ht). unfold TaskSlot.poll, TaskKind.poll. cbn [TaskSlot.kind].
  destruct (console_polls resps s (context k) w 13 rest Hw Hl (proj1 (proj2 Hok)) Hc1)
    as (s1 & c1 & w1 & -> & Es & Hr1 & (chs1 & Ec1 & Hoth) & Hs1 & Hw1 & Ht1).
  assert (console_ok line s1) as Hok1 by (rewrite Es; exact Hok).
  destruct (press_enter line s1 c1 w1 Hok1) as (s2 & c2 & w2 & -> & Hok2 & Hc2 & (chs2 & Ec2 & Hoth2) & Hs2 & Hw2 & Ht2).
  { by apply Hoth. }
  assert (KernelContext.next_message_id c1 = KernelContext.next_message_id base) as En by (rewrite Ec1, Hbase; done).
  cbn [mbind outcome_bind]. eexists _, _, w2. split; [done|]. split_and!; [|by rewrite Hs2, Hs1, <- app_assoc|congruence|auto].
  rewrite En in Hc2. apply ready_with_context; try done.
  - by apply lookup_lt_Some in Ht.
  - apply Hoth2; [done|]. exact Hr1.
  - exists chs2. rewrite Ec2, Ec1, Hbase. done.
Qed.

(** ... or nothing. *)
Lemma console_turn_idle resps line n base k (w : W) : ready 1 [] resps line n base k →
  (length resps ≤ 8)%nat → waiting w = [] →
  ∃ p k' w', run_once k w = Return (p, (k', w')) ∧ ready 0 [] [] line n base k' ∧
    sent w' = sent w ++ shown resps ∧ waiting w' = [] ∧ ∀ m, steady w m → steady w' m.
Proof.
  intros [(order & Hs & Ho0 & Ho1) Hcmd (i & d & t & s & Ht & Hok) Hc0 Hc1 (chs & Hbase)] Hl Hw.
  rewrite (turn k w order 1 _ eq_refl Hs Ho0 Ho1 Ht). unfold TaskSlot.poll, TaskKind.poll. cbn [TaskSlot.kind].
  unfold ConsoleService.poll. generalize (eq_refl 9%nat). generalize 9%nat at 1 3. intros fuel Hfuel.
  assert (length resps < fuel)%nat as Hf by lia. clear Hfuel. destruct (proj2 Hok) as [Hch _]. rewrite <- Hch in Hc1.
  destruct (drain_prints resps fuel false s (context k) w Hf Hc1) as (s1 & c1 & w1 & -> & Es & Hr1 & (chs1 & Ec1 & Hoth) & Hs1 & Hw1 & Ht1).
  cbn [mbind outcome_bind]. destruct (read_law w1) as (w2 & -> & Hs2 & Hw2 & Ht2). rewrite Hw1, Hw in *. cbn [mbind outcome_bind head].
  rewrite Hch in *. eexists _, _, w2. split; [done|]. split_and!; [|congruence|done|auto].
  apply ready_with_context; try done.
  - by apply lookup_lt_Some in Ht.
  - rewrite Es. exact Hok.
  - by apply Hoth.
  - exists chs1. rewrite Ec1, Hbase. done.
Qed.

Lemma run_app a : ∀ b k (w : W) k1 w1, run a k w = Return (k1, w1) → run (a + b) k w = run b k1 w1.
Proof.
  induction a as [|a IH]; intros b k w k1 w1; simpl; [by intros [= <- <-]|].
  destruct (run_once k w) as [[p [k2 w2]]| |]; simpl; try done. apply IH.
Qed.

(** *** A line

    The command of a line, in the state [base] of the kernel. *)
Definition command (line : list N) (base : ctx) : W → outcome (CommandResponseB.t * (ctx * W)) :=
  CommandService.handle_command (request_of line (KernelContext.next_message_id base))
    (base <| KernelContext.next_message_id := saturating_add (KernelContext.next_message_id base) 1 |>).

(** From the console's turn to the console's turn after the answer. *)
Lemma typed_line typed : ∀ resps line n m base base' k (w : W) rest,
  ready 1 [] resps line (length typed + S n) base k → (length resps ≤ 8)%nat → Forall plain typed →
  (length line + length typed ≤ 64)%nat → waiting w = typed ++ 13 :: rest → steady w (length typed + S (S m)) →
  (∀ w0 : W, ∃ resp w1, command (line ++ typed) base w0 = Return (resp, (base', w1))) →
  ∃ k' w0 resp w', run (2 * length typed + 2) k w = Return (k', w') ∧ ready 1 [] [resp] [] n base' k' ∧
    sent w0 = sent w ++ shown resps ++ typed ++ [13; 13; 10] ∧ waiting w0 = rest ∧
    command (line ++ typed) base w0 = Return (resp, (base', w')) ∧
    sent w' = sent w0 ∧ waiting w' = rest ∧ steady w' m.
Proof.
  induction typed as [|b typed IH]; intros resps line n m base base' k w rest Hr Hl Hp Hlen Hw Hst Ha.
  - destruct (console_turn_enter resps line _ base k w rest Hr Hl Hw) as (p & k1 & w1 & E1 & Hr1 & Hs1 & Hw1 & Ht1).
    rewrite app_nil_r in *. unfold command in *.
    destruct (command_turn _ [] n (S m) _ base' k1 w1 Hr1) as (p2 & k2 & w0 & resps2 & w2 & E2 & Hr2 & Ha2 & Ht0 & Hs0 & Hw0).
    + by repeat constructor.
    + simpl. lia.
    + by apply Ht1.
    + intros w0. destruct (Ha w0) as (resp & w2 & E). exists [resp], w2. cbn [answer_all]. by rewrite E.
    + cbn [answer_all] in Ha2. apply bind_Return in Ha2 as ([resp [c2 w2']] & Ecmd & [= <- -> ->]).
      destruct (handle_world _ _ _ _ _ _ _ Ecmd Ht0) as (Hs2 & Hw2 & Ht2).
      exists k2, w0, resp, w2. split; [|split_and!; [done|by rewrite Hs0, Hs1|congruence|done|done|congruence|done]].
      cbn [run Nat.mul Nat.add length]. rewrite E1. cbn [mbind outcome_bind]. rewrite E2. done.
  - apply Forall_cons in Hp as [Hb Hp]. simpl in Hlen, Hst, Hr.
    destruct (console_turn_byte resps line _ base k w b (typed ++ 13 :: rest) Hr Hl Hw Hb) as (p & k1 & w1 & E1 & Hr1 & Hs1 & Hw1 & Ht1); [lia|].
    destruct (idle_turn (line ++ [b]) _ (length typed + S (S m)) base k1 w1 Hr1) as (p2 & k2 & w2 & E2 & Hr2 & Ht2 & Hs2 & Hw2).
    { by apply Ht1. }
    destruct (IH [] (line ++ [b]) n m base base' k2 w2 rest Hr2)
      as (k' & w0 & resp & w' & E & Hr' & Hs0 & Hw0 & Hc & Hs' & Hw' & Ht'); try done.
    { simpl. lia. } { rewrite length_app. simpl. lia. } { congruence. } { by rewrite <- app_assoc. }
    rewrite <- app_assoc in Hc. exists k', w0, resp, w'. split; [|split_and!; try done].
    + replace (2 * length (b :: typed) + 2)%nat with (2 + (2 * length typed + 2))%nat by (simpl; lia).
      rewrite <- E. apply run_app. simpl. rewrite E1. cbn [mbind outcome_bind]. by rewrite E2.
    + rewrite Hs0, Hs2, Hs1. simpl. by rewrite <- !app_assoc.
Qed.

(** *** A conversation *)

Definition typed (lines : list (list N)) : list N := lines ≫= λ l, l ++ [13].

(** Lines that can be typed and whose commands return, one after the other: [halt] does not, nor
    does a command that panics.  Whether a command returns, and the state [base1] it leaves, are
    the same on every machine ([handle_any_world]). *)
Inductive answerable : ctx → list (list N) → ctx → Prop :=
| answerable_nil base : answerable base [] base
| answerable_cons base line lines (w : W) resp base1 w1 base2 :
    Forall plain line → (length line ≤ 64)%nat → command line base w = Return (resp, (base1, w1)) →
    answerable base1 lines base2 → answerable base (line :: lines) base2.

(** What the lines bring to the screen, which shows [screen] before: each line is echoed, and
    answered by the response of its command to the state that the earlier ones left and to the
    machine at that moment, which has sent what precedes the answer and has the remaining
    lines waiting. *)
Inductive conversation : list N → ctx → list (list N) → list N → ctx → Prop :=
| conversation_nil screen base : conversation screen base [] screen base
| conversation_cons screen base line lines (w : W) resp base1 w1 screen2 base2 :
    sent w = screen ++ line ++ [13; 13; 10] → waiting w = typed lines →
    command line base w = Return (resp, (base1, w1)) →
    conversation (screen ++ line ++ [13; 13; 10] ++ rendered resp ++ prompt) base1 lines screen2 base2 →
    conversation screen base (line :: lines) screen2 base2.

Lemma typed_cons line lines : typed (line :: lines) = line ++ 13 :: typed lines.
Proof. unfold typed. rewrite bind_cons. by rewrite <- app_assoc. Qed.

Lemma conversation_runs base lines base2 : answerable base lines base2 →
  ∀ resps n m k (w : W), ready 1 [] resps [] (length (typed lines) + n) base k → (length resps ≤ 8)%nat →
  waiting w = typed lines → steady w (length (typed lines) + length lines + m) →
  ∃ k' w', run (2 * length (typed lines) + 1) k w = Return (k', w') ∧ ready 0 [] [] [] n base2 k' ∧
    conversation (sent w ++ shown resps) base lines (sent w') base2 ∧ waiting w' = [].
Proof.
  induction 1 as [base|base line lines wx respx base1 wy base2 Hp Hlen Hx _ IH]; intros resps n m k w Hr Hl Hw Hst.
  - destruct (console_turn_idle resps [] n base k w Hr Hl Hw) as (p & k' & w' & E & Hr' & Hs' & Hw' & _).
    exists k', w'. simpl. rewrite E. split_and!; [done|done|rewrite Hs'; constructor|done].
  - rewrite typed_cons in *. rewrite length_app in *. cbn [length] in *.
    destruct (typed_line line resps [] (length (typed lines) + n) (length (typed lines) + length lines + m) base base1 k w (typed lines))
      as (k1 & w0 & resp & w1 & E1 & Hr1 & Hs0 & Hw0 & Hc & Hs1 & Hw1 & Ht1); try done.
    { by replace (length line + S (length (typed lines) + n))%nat with (length line + S (length (typed lines)) + n)%nat by lia. }
    { by replace (length line + S (S (length (typed lines) + length lines + m)))%nat
        with (length line + S (length (typed lines)) + S (length lines) + m)%nat by lia. }
    { intros w0. by apply (handle_any_world _ _ _ _ _ _ Hx). }
    destruct (IH [resp] n m k1 w1) as (k' & w' & E2 & Hr2 & Hconv & Hw2); try done. { simpl. lia. }
    exists k', w'. split; [|split_and!; [done| |done]].
    + replace (2 * (length line + S (length (typed lines))) + 1)%nat
        with ((2 * length line + 2) + (2 * length (typed lines) + 1))%nat by lia.
      rewrite <- E2. by apply run_app.
    + eapply (conversation_cons _ _ _ _ w0); [by rewrite Hs0, <- !app_assoc|done|done|].
      rewrite Hs1, Hs0 in Hconv. simpl in Hconv. rewrite app_nil_r in Hconv. by rewrite <- !app_assoc in *.
Qed.

(** The kernel at boot. *)
Definition boot_context (b : BootInfo.t) (a : option FrameAllocator.t) (h : option BumpHeap.t) : ctx :=
  KernelContext.mk b a h (replicate 16 Channel.new) 1.
Lemma boot_ready b a h n : N.of_nat n ≤ u64_max →
  ∃ k, BootKernel.new b a h = Return k ∧ ready 0 [] [] [] n (boot_context b a h) k.
Proof.
  intros Hn. destruct (BootKernel.new b a h) as [k| |] eqn:E; vm_compute in E; try discriminate E.
  injection E as <-. eexists. split; [done|].
  assert (∀ ch, ch < 16 → holds (boot_context b a h) ch []) as Hh.
  { intros ch Hch. split_and!; [done|done|]. exists Channel.new. split_and!; [|apply ChannelSpec.channel_new_wf..].
    apply lookup_replicate_2. lia. }
  split.
  - eexists. split; [done|]. done.
  - eexists _, _, _, _. split; [done|]. split; [done|]. simpl. lia.
  - eexists _, _, _, _. split; [done|]. split_and!; try done. simpl. lia.
  - exact (Hh 0 eq_refl).
  - exact (Hh 1 eq_refl).
  - by exists (replicate 16 Channel.new).
Qed.

End with_platform.

(** *** Booting in place *)

Lemma fill_spec {A} (x : A) n : ∀ l, (n ≤ length l)%nat →
  fold_outcome (λ l i, slice_set l (N.of_nat i) x) (seq 0 n) l = Return (replicate n x ++ drop n l).
Proof.
  induction n as [|n IH]; intros l Hl; [done|]. rewrite seq_S, fold_outcome_app, IH by lia.
  cbn [mbind outcome_bind fold_outcome]. destruct (drop n l) as [|y d] eqn:Ed.
  { apply (f_equal length) in Ed. rewrite length_drop in Ed. simpl in Ed. lia. }
  rewrite (proj2 (slice_set_Return _ _ x (replicate (S n) x ++ drop (S n) l))).
  - done.
  - rewrite Nat2N.id, length_app, length_replicate. cbn [length]. split; [lia|].
    rewrite insert_app_r_alt by (rewrite length_replicate; lia). rewrite length_replicate, Nat.sub_diag.
    rewrite replicate_S_end, <- app_assoc. cbn [app insert list_insert]. rewrite <- (Nat.add_1_r n), <- drop_drop, Ed. done.
Qed.

(** The kernel built in uninitialised storage is the kernel that [new] builds. *)
Theorem in_place_kernel_is_new storage b a h :
  length (channels storage) = 16%nat → length (tasks storage) = 8%nat →
  init_in_place storage b a h = BootKernel.new b a h.
Proof.
  intros Hc Ht. unfold init_in_place. cbn [channels tasks].
  rewrite fill_spec by (by rewrite Hc). cbn [mbind outcome_bind]. unfold update_field. cbn [tasks].
  rewrite fill_spec by (by rewrite Ht). cbn [mbind outcome_bind]. rewrite !drop_ge by (rewrite ?Hc, ?Ht; done).
  rewrite !app_nil_r. done.
Qed.
End SessionSpec.

(** ** An example *)

Module SessionExample.
Import SessionSpec.
Definition lines : list (list N) := [Utf8.bytes "heap"; Utf8.bytes "ticks"; Utf8.bytes "nonsense"].
Definition machine : Machine.t := Machine.mk {| Machine.tx := []; Machine.rx := typed lines |} 0.
Definition screen : list N :=
  Utf8.bytes "heap" ++ [13; 13; 10] ++ Utf8.bytes "heap: unavailable" ++ [13; 10; 13; 13; 10; 62; 32]
  ++ Utf8.bytes "ticks" ++ [13; 13; 10] ++ Utf8.bytes "kernel ticks: 12 (at 100 Hz)" ++ [13; 10; 13; 13; 10; 62; 32]
  ++ Utf8.bytes "nonsense" ++ [13; 13; 10] ++ Utf8.bytes "error: unknown command" ++ [13; 13; 10; 62; 32].

End SessionExample.
