(* ===== verification/Console.v ===== *)
(** * The consoles of workspace components

    [services_workspace_manager/src/lib.rs]: [InlineConsole], the line editor with history and
    output behind the command-line, pipeline and custom components, and the hosts of custom
    components.  Strings are indexed by bytes as in the editor core. *)

From S2P Require Import Prelude CoreTypes Editor Input Views Layout.
Open Scope string_scope.
Open Scope list_scope.
Open Scope nat_scope.

(** Plain and shifted characters of the keys. *)
(* services_workspace_manager/src/lib.rs:1288-1341 key_event_to_char *)
Definition key_event_to_char (event : KeyEvent.t) : option N :=
  let shifted := Modifiers.is_shift (KeyEvent.modifiers event) in
  let key (plain shift : N) : option N := Some (if shifted then shift else plain) in
  match KeyEvent.code event with
  | KeyCode.A => key 97 65 | KeyCode.B => key 98 66 | KeyCode.C => key 99 67 | KeyCode.D => key 100 68
  | KeyCode.E => key 101 69 | KeyCode.F => key 102 70 | KeyCode.G => key 103 71 | KeyCode.H => key 104 72
  | KeyCode.I => key 105 73 | KeyCode.J => key 106 74 | KeyCode.K => key 107 75 | KeyCode.L => key 108 76
  | KeyCode.M => key 109 77 | KeyCode.N => key 110 78 | KeyCode.O => key 111 79 | KeyCode.P => key 112 80
  | KeyCode.Q => key 113 81 | KeyCode.R => key 114 82 | KeyCode.S => key 115 83 | KeyCode.T => key 116 84
  | KeyCode.U => key 117 85 | KeyCode.V => key 118 86 | KeyCode.W => key 119 87 | KeyCode.X => key 120 88
  | KeyCode.Y => key 121 89 | KeyCode.Z => key 122 90
  | KeyCode.Num0 => key 48 41 | KeyCode.Num1 => key 49 33 | KeyCode.Num2 => key 50 64
  | KeyCode.Num3 => key 51 35 | KeyCode.Num4 => key 52 36 | KeyCode.Num5 => key 53 37
  | KeyCode.Num6 => key 54 94 | KeyCode.Num7 => key 55 38 | KeyCode.Num8 => key 56 42
  | KeyCode.Num9 => key 57 40 | KeyCode.Space => Some 32
  | KeyCode.Minus => key 45 95 | KeyCode.Equal => key 61 43 | KeyCode.LeftBracket => key 91 123
  | KeyCode.RightBracket => key 93 125 | KeyCode.Backslash => key 92 124 | KeyCode.Semicolon => key 59 58
  | KeyCode.Quote => key 39 34 | KeyCode.Comma => key 44 60 | KeyCode.Period => key 46 62
  | KeyCode.Slash => key 47 63 | KeyCode.Grave => key 96 126
  | _ => None
  end%N.

Module InlineConsole.
(* services_workspace_manager/src/lib.rs:801-811 InlineConsole *)
Record t := mk {
  prompt : Str.t;
  input_buffer : Str.t;
  cursor_pos : nat;
  history : list Str.t;
  history_pos : option nat;
  output_lines : list Str.t;
  max_output_lines : nat;
  next_main_revision : N;
  next_status_revision : N
}.
#[global] Instance rebuild_t : Rebuild t := λ c,
  mk (prompt c) (input_buffer c) (cursor_pos c) (history c) (history_pos c) (output_lines c)
     (max_output_lines c) (next_main_revision c) (next_status_revision c).
(* services_workspace_manager/src/lib.rs:814-826 InlineConsole::new *)
Definition new (prompt : Str.t) (welcome_lines : list Str.t) : t :=
  mk prompt [] 0 [] None welcome_lines 256 1 1.
(* services_workspace_manager/src/lib.rs:992-998 InlineConsole::trim_output *)
Definition trim_output (c : t) : t :=
  if max_output_lines c <? length (output_lines c)
  then c <| output_lines ::= drop (length (output_lines c) - max_output_lines c) |>
  else c.
(* services_workspace_manager/src/lib.rs:940-945 InlineConsole::push_output_lines *)
Definition push_output_lines (lines : list Str.t) (c : t) : t :=
  trim_output (c <| output_lines ::= λ l, l ++ lines |>).
(** The empty input line. *)
Definition clear_input (c : t) : t :=
  c <| input_buffer := [] |> <| cursor_pos := 0 |> <| history_pos := None |>.
(** A line of the history as the input line. *)
Definition recall (pos : nat) (c : t) : outcome t :=
  line ← expect (history c !! pos);
  Return (c <| history_pos := Some pos |> <| input_buffer := line |> <| cursor_pos := Str.len line |>).
(* services_workspace_manager/src/lib.rs:851-937 InlineConsole::process_input (keys) *)
Definition press (key : KeyEvent.t) (c : t) : outcome (option Str.t * t) :=
  match KeyEvent.code key with
  | KeyCode.Enter =>
      let command := input_buffer c in
      let c := if bool_decide (Str.trim command = []) then c else c <| history ::= λ l, l ++ [command] |> in
      Return (Some command, clear_input c)
  | KeyCode.Backspace =>
      if (0 <? cursor_pos c) && (cursor_pos c <=? Str.len (input_buffer c))
      then b ← Str.remove (cursor_pos c - 1) (input_buffer c);
           Return (None, c <| input_buffer := b |> <| cursor_pos ::= pred |>)
      else Return (None, c)
  | KeyCode.Delete =>
      if cursor_pos c <? Str.len (input_buffer c)
      then b ← Str.remove (cursor_pos c) (input_buffer c); Return (None, c <| input_buffer := b |>)
      else Return (None, c)
  | KeyCode.Left => Return (None, c <| cursor_pos ::= pred |>)
  | KeyCode.Right =>
      Return (None, if cursor_pos c <? Str.len (input_buffer c) then c <| cursor_pos ::= S |> else c)
  | KeyCode.Home => Return (None, c <| cursor_pos := 0 |>)
  | KeyCode.End => Return (None, c <| cursor_pos := Str.len (input_buffer c) |>)
  | KeyCode.Escape => Return (None, clear_input c)
  | KeyCode.Up =>
      match history c with
      | [] => Return (None, c)
      | _ =>
          let pos := match history_pos c with
                     | None => length (history c) - 1
                     | Some p => if 0 <? p then p - 1 else p
                     end in
          c ← recall pos c; Return (None, c)
      end
  | KeyCode.Down =>
      match history_pos c with
      | Some pos =>
          if pos + 1 <? length (history c) then c ← recall (pos + 1) c; Return (None, c)
          else Return (None, clear_input c)
      | None => Return (None, c)
      end
  | _ =>
      match key_event_to_char key with
      | Some ch =>
          b ← Str.insert (cursor_pos c) ch (input_buffer c);
          Return (None, c <| input_buffer := b |> <| cursor_pos ::= S |> <| history_pos := None |>)
      | None => Return (None, c)
      end
  end.
(* services_workspace_manager/src/lib.rs:828-938 InlineConsole::process_input *)
Definition process_input (event : InputEvent.t) (c : t) : outcome (option Str.t * t) :=
  match InputEvent.as_key event with
  | None => Return (None, c)
  | Some key =>
      if negb (KeyEvent.is_pressed key) then Return (None, c)
      else if Modifiers.is_ctrl (KeyEvent.modifiers key) && bool_decide (KeyEvent.code key = KeyCode.C)
      then Return (None, clear_input c)
      else if Modifiers.is_ctrl (KeyEvent.modifiers key) && bool_decide (KeyEvent.code key = KeyCode.L)
      then Return (None, trim_output (c <| output_lines := [] |>))
      else press key c
  end.
(** What the main view shows, and where its cursor is. *)
Definition screen (c : t) : list Str.t := output_lines c ++ [prompt c ++ input_buffer c].
(** [status_label] names the component in the status line. *)
(* services_workspace_manager/src/lib.rs:947-990 InlineConsole::publish_views *)
Definition publish_views `{UuidFormat} (host : ViewHost.t) (main_view status_view : ViewHandleCap.t) (timestamp_ns : N)
    (component_id : ComponentId.t) (status_label : string) (c : t) : outcome (t * ViewHost.t) :=
  let name := Str.of_string ("comp:" +:+ uuid_to_string (ComponentId.uuid component_id)) in
  let main_frame :=
    ViewFrame.with_component_id name
      (ViewFrame.with_cursor
         (CursorPosition.new (len (output_lines c)) (N.of_nat (Str.len (prompt c) + cursor_pos c)))
         (ViewFrame.new (ViewHandleCap.view_id main_view) ViewKind.TextBuffer (next_main_revision c)
            (ViewContent.text_buffer (screen c)) timestamp_ns)) in
  r ← add_u64 (next_main_revision c) 1;
  let c := c <| next_main_revision := r |> in
  '(_, host) ← ViewHost.publish_frame main_view main_frame host;
  let status_text := Str.of_string (status_label +:+ " | lines:" +:+ pretty (len (output_lines c))
                                    +:+ " | history:" +:+ pretty (len (history c))) in
  let status_frame :=
    ViewFrame.with_component_id name
      (ViewFrame.new (ViewHandleCap.view_id status_view) ViewKind.StatusLine (next_status_revision c)
         (ViewContent.status_line status_text) timestamp_ns) in
  r ← add_u64 (next_status_revision c) 1;
  let c := c <| next_status_revision := r |> in
  '(_, host) ← ViewHost.publish_frame status_view status_frame host;
  Return (c, host).
End InlineConsole.

(** ** Custom components *)

Module CustomHostKind.
(* services_workspace_manager/src/lib.rs:1183-1188 CustomHostKind *)
Inductive t := Generic | Kiosk | PackageEntry.
#[global] Instance eq_dec : EqDecision t.
Proof. solve_decision. Defined.
(* services_workspace_manager/src/lib.rs:1191-1197 CustomHostKind::label *)
Definition label (k : t) : string :=
  match k with Generic => "generic" | Kiosk => "kiosk" | PackageEntry => "package-entry" end.
End CustomHostKind.

Module CustomComponentDescriptor.
(* services_workspace_manager/src/lib.rs:1200-1204 CustomComponentDescriptor *)
Record t := mk { entry : string; host_kind : CustomHostKind.t }.
End CustomComponentDescriptor.

Module CustomComponentRegistry.
(* services_workspace_manager/src/lib.rs:1243-1245 CustomComponentRegistry *)
Record t := mk { handlers : gmap string CustomHostKind.t }.
(* services_workspace_manager/src/lib.rs:1248-1254 CustomComponentRegistry::with_defaults *)
Definition with_defaults : t :=
  mk (<["shell" := CustomHostKind.PackageEntry]> (<["dashboard" := CustomHostKind.Kiosk]>
     (<["kiosk" := CustomHostKind.Kiosk]> ∅))).
(* services_workspace_manager/src/lib.rs:1256-1285 CustomComponentRegistry::resolve *)
Definition resolve (metadata : gmap string string) (r : t) : CustomComponentDescriptor.t :=
  match metadata !! "package.entry" with
  | Some entry =>
      CustomComponentDescriptor.mk entry (default CustomHostKind.PackageEntry (handlers r !! entry))
  | None =>
      match metadata !! "kiosk.app" with
      | Some app => CustomComponentDescriptor.mk app (default CustomHostKind.Kiosk (handlers r !! app))
      | None => CustomComponentDescriptor.mk "custom.generic" CustomHostKind.Generic
      end
  end.
End CustomComponentRegistry.

(** The order of two strings, by bytes. *)
Definition string_leb (a b : string) : bool :=
  match String.compare a b with Gt => false | _ => true end.
Definition pair_le (a b : string * string) : Prop :=
  match String.compare a.1 b.1 with
  | Lt => True
  | Eq => string_leb a.2 b.2 = true
  | Gt => False
  end.
#[global] Instance pair_le_dec : RelDecision pair_le.
Proof. intros a b. unfold pair_le. destruct (String.compare a.1 b.1); apply _. Defined.

Module CustomComponentRuntime.
(* services_workspace_manager/src/lib.rs:1206-1210 CustomComponentRuntime *)
Record t := mk {
  console : InlineConsole.t;
  descriptor : CustomComponentDescriptor.t;
  metadata_snapshot : list (string * string)
}.
#[global] Instance rebuild_t : Rebuild t := λ r, mk (console r) (descriptor r) (metadata_snapshot r).
(* services_workspace_manager/src/lib.rs:1213-1240 CustomComponentRuntime::new *)
Definition new `{HashOrder} (descriptor : CustomComponentDescriptor.t) (component_name : string)
    (metadata : gmap string string) : t :=
  mk (InlineConsole.new (Str.of_string "custom> ")
        [Str.of_string ("Custom component host ready: " +:+ component_name);
         Str.of_string ("entry=" +:+ CustomComponentDescriptor.entry descriptor +:+ " handler="
                        +:+ CustomHostKind.label (CustomComponentDescriptor.host_kind descriptor));
         Str.of_string "Type `help` for custom host commands"])
    descriptor (merge_sort pair_le (hm_iter metadata)).
(** The words of a command are given: [split_whitespace]. *)
(* services_workspace_manager/src/lib.rs:2654-2701 WorkspaceManager::run_custom_host_command *)
Definition run_custom_host_command (r : t) (words : list string) : list string :=
  let label := CustomHostKind.label (CustomComponentDescriptor.host_kind (descriptor r)) in
  match words with
  | [] => []
  | op :: parts =>
      if decide (op = "help") then
        ["Custom host commands:"; "  status"; "  meta"; "  ping [payload]"]
      else if decide (op = "status") then
        ["Custom host online: handler=" +:+ label +:+ " entry=" +:+ CustomComponentDescriptor.entry (descriptor r)
         +:+ " metadata=" +:+ pretty (len (metadata_snapshot r))]
      else if decide (op = "meta") then
        match metadata_snapshot r with
        | [] => ["No metadata entries"]
        | l => ("Metadata entries (" +:+ pretty (len l) +:+ ")") :: ((λ kv, "  " +:+ kv.1 +:+ "=" +:+ kv.2) <$> l)
        end
      else if decide (op = "ping") then
        let payload := String.concat " " parts in
        if decide (payload = "") then ["pong"] else ["pong [" +:+ payload +:+ "] via " +:+ label]
      else ["Unknown custom command: " +:+ op]
  end.
End CustomComponentRuntime.

(** ** Correctness *)

Module ConsoleSpec.
Import InlineConsole.

Definition ascii (s : Str.t) : Prop := Forall (λ c, (c < 128)%N) s.
Record console_ok (c : InlineConsole.t) : Prop := {
  co_input : ascii (input_buffer c);
  co_cursor : cursor_pos c ≤ length (input_buffer c);
  co_history : Forall ascii (history c);
  co_pos : ∀ p, history_pos c = Some p → p < length (history c);
  co_output : length (output_lines c) ≤ max_output_lines c
}.

Lemma ascii_len s : ascii s → Str.len s = length s.
Proof.
  induction 1 as [|c s Hc _ IH]; [done|]. simpl. unfold Str.len_utf8.
  destruct (N.ltb_spec c 0x80); [by rewrite IH|lia].
Qed.
Lemma ascii_split_at s : ascii s → ∀ i, i ≤ length s → Str.split_at i s = Some (take i s, drop i s).
Proof.
  induction 1 as [|c s Hc _ IH]; intros i Hi; destruct i as [|i]; simpl in *; try done; [lia|].
  assert (Str.len_utf8 c = 1) as ->.
  { unfold Str.len_utf8. destruct (N.ltb_spec c 0x80); [done|lia]. }
  simpl. rewrite Nat.sub_0_r, IH by lia. done.
Qed.
Lemma ascii_take_drop s i : ascii s → ascii (take i s) ∧ ascii (drop i s).
Proof. intros H. split; [by apply Forall_take|by apply Forall_drop]. Qed.
Lemma ascii_insert i ch s : ascii s → i ≤ length s →
  Str.insert i ch s = Return (take i s ++ ch :: drop i s).
Proof. intros Hs Hi. unfold Str.insert. by rewrite ascii_split_at. Qed.
Lemma ascii_remove i s x : ascii s → s !! i = Some x →
  Str.remove i s = Return (take i s ++ drop (S i) s).
Proof.
  intros Hs Hx. unfold Str.remove. rewrite ascii_split_at by (done || (apply lookup_lt_Some in Hx; lia)). simpl.
  by rewrite (drop_S _ _ _ Hx).
Qed.
Lemma char_ascii key ch : key_event_to_char key = Some ch → (ch < 128)%N.
Proof.
  unfold key_event_to_char. destruct (KeyEvent.code key); try discriminate;
    intros [= <-]; try destruct (Modifiers.is_shift _); lia.
Qed.

Lemma clear_ok c : console_ok c → console_ok (clear_input c).
Proof. intros []. split; simpl; (done || apply Forall_nil; done || lia). Qed.
Lemma recall_ok c pos : console_ok c → pos < length (history c) →
  ∃ c', recall pos c = Return c' ∧ console_ok c'.
Proof.
  intros [? ? Hh ? ?] Hp. unfold recall. destruct (lookup_lt_is_Some_2 _ _ Hp) as [line Hl]. rewrite Hl. simpl.
  assert (ascii line) as Ha by (by eapply Forall_lookup_1).
  eexists. split; [done|]. split; simpl; try done; [by rewrite ascii_len|]. intros p [= <-]. done.
Qed.

Lemma trim_ok c : ascii (input_buffer c) → cursor_pos c ≤ length (input_buffer c) → Forall ascii (history c) →
  (∀ p, history_pos c = Some p → p < length (history c)) → console_ok (trim_output c).
Proof.
  intros. unfold trim_output. destruct (Nat.ltb_spec (max_output_lines c) (length (output_lines c))).
  - split; simpl; try done. rewrite length_drop. lia.
  - by split.
Qed.

Lemma press_ok key c : console_ok c → ∃ o c', press key c = Return (o, c') ∧ console_ok c'.
Proof.
  intros Hok. destruct Hok as [Hi Hc Hh Hp Ho] eqn:EE. clear EE. unfold press.
  assert (∀ ch, key_event_to_char key = Some ch → ∃ o c',
    (b ← Str.insert (cursor_pos c) ch (input_buffer c);
     Return (None, c <| input_buffer := b |> <| cursor_pos ::= S |> <| history_pos := None |>))
      = Return (o : option Str.t, c') ∧ console_ok c') as Hchar.
  { intros ch Hch%char_ascii. rewrite ascii_insert by done. simpl. eexists _, _. split; [done|].
    destruct (ascii_take_drop (input_buffer c) (cursor_pos c) Hi). split; simpl; try done.
    - apply Forall_app. split; [done|by constructor].
    - rewrite length_app, length_take. simpl. rewrite length_drop. lia. }
  destruct (KeyEvent.code key) eqn:Ek;
    try (destruct (key_event_to_char key) as [ch|] eqn:Ech; [by apply Hchar|by eexists _, _]).
  - eexists _, _. split; [done|]. by apply clear_ok.
  - eexists _, _. split; [done|]. apply clear_ok. case_bool_decide; [done|]. split; simpl; try done.
    + apply Forall_app. split; [done|]. by apply Forall_singleton.
    + intros p Hpp. rewrite length_app. specialize (Hp p Hpp). simpl. lia.
  - rewrite ascii_len by done. destruct (Nat.ltb_spec 0 (cursor_pos c)), (Nat.leb_spec (cursor_pos c) (length (input_buffer c)));
      simpl; try by eexists _, _.
    destruct (lookup_lt_is_Some_2 (input_buffer c) (cursor_pos c - 1)) as [x Hx]; [lia|].
    rewrite (ascii_remove _ _ x) by done. simpl. eexists _, _. split; [done|].
    destruct (ascii_take_drop (input_buffer c) (cursor_pos c - 1) Hi), (ascii_take_drop (input_buffer c) (S (cursor_pos c - 1)) Hi).
    split; simpl; try done; [by apply Forall_app|]. rewrite length_app, length_take, length_drop. lia.
  - rewrite ascii_len by done. destruct (Nat.ltb_spec (cursor_pos c) (length (input_buffer c))); [|by eexists _, _].
    destruct (lookup_lt_is_Some_2 (input_buffer c) (cursor_pos c)) as [x Hx]; [lia|].
    rewrite (ascii_remove _ _ x) by done. simpl. eexists _, _. split; [done|].
    destruct (ascii_take_drop (input_buffer c) (cursor_pos c) Hi), (ascii_take_drop (input_buffer c) (S (cursor_pos c)) Hi).
    split; simpl; try done; [by apply Forall_app|]. rewrite length_app, length_take, length_drop. lia.
  - eexists _, _. split; [done|]. split; simpl; try done. lia.
  - eexists _, _. split; [done|]. by rewrite ascii_len; [split; simpl; try done|done].
  - destruct (history c) as [|x l] eqn:El; [by eexists _, _|]. rewrite <- El in *.
    destruct (recall_ok c (match history_pos c with None => length (history c) - 1 | Some p => if 0 <? p then p - 1 else p end))
      as (c' & -> & Hc'); [done| |by eexists _, _].
    destruct (history_pos c) as [p|] eqn:Ep; [specialize (Hp p eq_refl); destruct (Nat.ltb_spec 0 p); lia|].
    rewrite El. simpl. lia.
  - destruct (history_pos c) as [p|] eqn:Ep; [|by eexists _, _].
    destruct (Nat.ltb_spec (p + 1) (length (history c))) as [Hlt|].
    + destruct (recall_ok c (p + 1)) as (c' & -> & Hc'); [done..|by eexists _, _].
    + eexists _, _. split; [done|]. by apply clear_ok.
  - eexists _, _. split; [done|]. split; simpl; try done. lia.
  - rewrite ascii_len by done. destruct (Nat.ltb_spec (cursor_pos c) (length (input_buffer c))); eexists _, _; (split; [done|]);
      [|done]. by split.
Qed.

Lemma process_ok event c : console_ok c → ∃ o c', process_input event c = Return (o, c') ∧ console_ok c'.
Proof.
  intros Hok. unfold process_input. destruct (InputEvent.as_key event) as [key|]; [|by eexists _, _].
  destruct (KeyEvent.is_pressed key); simpl; [|by eexists _, _].
  destruct (Modifiers.is_ctrl (KeyEvent.modifiers key)); simpl; [|by apply press_ok].
  repeat case_bool_decide; try by apply press_ok.
  - eexists _, _. split; [done|]. by apply clear_ok.
  - eexists _, _. split; [done|]. destruct Hok. by apply trim_ok.
Qed.

(** The keys of an input line and the key that ends it. *)
Fixpoint process_all (events : list InputEvent.t) (c : InlineConsole.t) : outcome (list Str.t * InlineConsole.t) :=
  match events with
  | [] => Return ([], c)
  | e :: events =>
      '(o, c) ← process_input e c;
      '(cmds, c) ← process_all events c;
      Return (option_list o ++ cmds, c)
  end.

(** A key that types a character. *)
Definition types (e : InputEvent.t) (ch : N) : Prop :=
  ∃ key, e = InputEvent.Key key ∧ KeyEvent.is_pressed key = true ∧
    Modifiers.is_ctrl (KeyEvent.modifiers key) = false ∧ key_event_to_char key = Some ch.
Definition enter : InputEvent.t := InputEvent.Key (KeyEvent.pressed KeyCode.Enter Modifiers.none).

Lemma type_char e ch c : types e ch → console_ok c → cursor_pos c = length (input_buffer c) →
  ∃ c', process_input e c = Return (None, c') ∧ console_ok c' ∧ input_buffer c' = input_buffer c ++ [ch] ∧
    cursor_pos c' = length (input_buffer c') ∧ history c' = history c ∧ output_lines c' = output_lines c.
Proof.
  intros (key & -> & Hp & Hctrl & Hch) Hok Hend. destruct (process_ok (InputEvent.Key key) c Hok) as (o & c' & E & Hok').
  revert E. unfold process_input. simpl. rewrite Hp, Hctrl. simpl.
  assert (press key c = (b ← Str.insert (cursor_pos c) ch (input_buffer c);
     Return (None, c <| input_buffer := b |> <| cursor_pos ::= S |> <| history_pos := None |>))) as ->.
  { unfold press. rewrite Hch. unfold key_event_to_char in Hch. by destruct (KeyEvent.code key). }
  rewrite ascii_insert by (by destruct Hok). simpl. rewrite Hend, firstn_all, drop_all.
  intros [= <- <-]. eexists. split; [done|]. split_and!; try done. simpl. rewrite length_app. simpl. lia.
Qed.

(** What is typed into a console is what it runs.  On an empty input line, keys that type
    the characters of a text followed by Enter produce exactly one command, the text; the line
    is empty again, a text that is not blank becomes the newest entry of the history, and no
    key, in any state that keys can reach, panics. *)
Theorem typed_text_is_the_command c events text : console_ok c → input_buffer c = [] →
  Forall2 types events text →
  ∃ c', process_all (events ++ [enter]) c = Return ([text], c') ∧ console_ok c' ∧ input_buffer c' = [] ∧
    history c' = (if bool_decide (Str.trim text = []) then history c else history c ++ [text]) ∧
    output_lines c' = output_lines c ∧
    ∀ e, ∃ o c'', process_input e c' = Return (o, c'') ∧ console_ok c''.
Proof.
  intros Hok Hempty Hty.
  assert (∀ c, console_ok c → cursor_pos c = length (input_buffer c) → ∃ c',
    process_all (events ++ [enter]) c = Return ([input_buffer c ++ text], c') ∧ console_ok c' ∧ input_buffer c' = [] ∧
    history c' = (if bool_decide (Str.trim (input_buffer c ++ text) = []) then history c else history c ++ [input_buffer c ++ text]) ∧
    output_lines c' = output_lines c) as Hrun.
  { clear Hok Hempty c. induction Hty as [|e ch events text He _ IH]; intros c Hok Hend.
    - rewrite app_nil_r. cbn [app process_all]. destruct (process_ok enter c Hok) as (o & c' & E & Hok').
      rewrite E. simpl in E |- *. injection E as <- <-. eexists. split; [done|]. split_and!; try done; simpl; by case_bool_decide.
    - destruct (type_char e ch c He Hok Hend) as (c1 & E1 & Hok1 & Hb1 & Hend1 & Hh1 & Ho1).
      cbn [app process_all]. rewrite E1. cbn [mbind outcome_bind].
      destruct (IH c1 Hok1 Hend1) as (c' & E & Hok' & Hb' & Hh' & Ho'). rewrite E. cbn [mbind outcome_bind option_list app].
      rewrite Hb1, <- app_assoc in *. simpl in *. exists c'. split_and!; [done..|by rewrite Hh', Hh1|congruence]. }
  destruct (Hrun c Hok) as (c' & E & Hok' & Hb & Hh & Ho).
  { destruct Hok as [_ Hcur _ _ _]. rewrite Hempty in *. simpl in *. lia. }
  rewrite Hempty in *. simpl in *. exists c'. split_and!; try done. intros e. by apply process_ok.
Qed.

Lemma typed_text_is_the_command_witness :
  ∃ c', process_all ([InputEvent.Key (KeyEvent.pressed KeyCode.L Modifiers.none);
                      InputEvent.Key (KeyEvent.pressed KeyCode.S Modifiers.none)] ++ [enter])
          (InlineConsole.new (Str.of_string "pg> ") []) = Return ([Str.of_string "ls"], c') ∧
    history c' = [Str.of_string "ls"].
Proof.
  destruct (typed_text_is_the_command (InlineConsole.new (Str.of_string "pg> ") [])
    [InputEvent.Key (KeyEvent.pressed KeyCode.L Modifiers.none); InputEvent.Key (KeyEvent.pressed KeyCode.S Modifiers.none)]
    (Str.of_string "ls")) as (c' & E & _ & _ & Hh & _).
  - split; simpl; [by apply Forall_nil|lia|by apply Forall_nil|done|lia].
  - reflexivity.
  - repeat constructor; eexists; (split; [reflexivity|]); split_and!; reflexivity.
  - exists c'. split; [exact E|exact Hh].
Defined.

(** *** What the views show *)

(** The view of [handle] is there, belongs to the handle, and holds an older frame. *)
Definition can_publish (handle : ViewHandleCap.t) (revision : N) (host : ViewHost.t) : Prop :=
  ∃ r, ViewHost.views host !! ViewHandleCap.view_id handle = Some r ∧ ViewRecord.verify_handle handle r = Ok tt ∧
    ∀ f, ViewRecord.latest_frame r = Some f → (ViewFrame.revision f < revision)%N.

Lemma publish_accepted handle frame host : can_publish handle (ViewFrame.revision frame) host →
  ViewFrame.view_id frame = ViewHandleCap.view_id handle →
  ∃ host', ViewHost.publish_frame handle frame host = Return (Ok tt, host') ∧
    ViewHost.get_latest (ViewHandleCap.view_id handle) host' = Ok (Some frame) ∧
    (∀ n, (ViewFrame.revision frame < n)%N → can_publish handle n host') ∧
    ∀ h n, ViewHandleCap.view_id h ≠ ViewHandleCap.view_id handle → can_publish h n host → can_publish h n host'.
Proof.
  intros (r & Hr & Hv & Hrev) Hid. unfold ViewHost.publish_frame. rewrite Hr, Hv, bool_decide_true by done. simpl.
  assert (ViewRecord.verify_revision (ViewFrame.revision frame) r = Return (Ok tt)) as ->.
  { unfold ViewRecord.verify_revision. destruct (ViewRecord.latest_frame r) as [f|] eqn:Ef; [|done].
    specialize (Hrev f eq_refl). destruct (N.leb_spec (ViewFrame.revision frame) (ViewFrame.revision f)); [lia|done]. }
  simpl. eexists. split; [done|]. split_and!.
  - unfold ViewHost.get_latest. simpl. by rewrite lookup_insert_eq.
  - intros n Hn. eexists. simpl. rewrite lookup_insert_eq. split; [done|]. split; [exact Hv|]. simpl. by intros f [= <-].
  - intros h n Hne (r' & Hr' & ?). exists r'. simpl. rewrite lookup_insert_ne by done. done.
Qed.

(** The views show the console: as long as the console is the only writer of its two
    views, publishing is accepted; the main view then shows the output, then the prompt with
    the input line, with the cursor on it, and the next publication will be accepted too. *)
Theorem console_views_are_current `{UuidFormat} c host main status ts cid label :
  can_publish main (next_main_revision c) host → can_publish status (next_status_revision c) host →
  ViewHandleCap.view_id main ≠ ViewHandleCap.view_id status →
  (next_main_revision c < u64_max)%N → (next_status_revision c < u64_max)%N →
  ∃ c' host' frame, publish_views host main status ts cid label c = Return (c', host') ∧
    ViewHost.get_latest (ViewHandleCap.view_id main) host' = Ok (Some frame) ∧
    ViewFrame.content frame = ViewContent.TextBuffer (output_lines c ++ [prompt c ++ input_buffer c]) ∧
    ViewFrame.cursor frame = Some (CursorPosition.new (len (output_lines c)) (N.of_nat (Str.len (prompt c) + cursor_pos c))) ∧
    can_publish main (next_main_revision c') host' ∧ can_publish status (next_status_revision c') host' ∧
    input_buffer c' = input_buffer c ∧ output_lines c' = output_lines c.
Proof.
  intros Hm Hs Hne Hb1 Hb2. unfold publish_views. cbv zeta.
  rewrite (proj2 (add_u64_Return (next_main_revision c) 1 (next_main_revision c + 1))) by (unfold u64_max in *; lia). cbn [mbind outcome_bind].
  set (frame := ViewFrame.with_component_id _ (ViewFrame.with_cursor _ _)).
  destruct (publish_accepted main frame host) as (h1 & -> & Hg1 & Hc1 & Ho1); [exact Hm|done|]. cbn [mbind outcome_bind].
  cbn [next_status_revision update_field].
  rewrite (proj2 (add_u64_Return (next_status_revision c) 1 (next_status_revision c + 1))) by (unfold u64_max in *; lia). cbn [mbind outcome_bind].
  set (sframe := ViewFrame.with_component_id _ (ViewFrame.new _ ViewKind.StatusLine _ _ _)).
  destruct (publish_accepted status sframe h1) as (h2 & E2 & Hg2 & Hc2 & Ho2); [by apply Ho1|done|].
  rewrite E2. cbn [mbind outcome_bind]. eexists _, h2, frame. split; [done|]. split_and!; try done.
  - unfold ViewHost.get_latest in *. unfold ViewHost.publish_frame in E2.
    destruct (ViewHost.views h1 !! ViewHandleCap.view_id status) as [r|] eqn:Er; [|done].
    destruct (ViewRecord.verify_handle status r); [|done]. destruct (negb _); [done|].
    destruct (ViewRecord.verify_revision _ _) as [[[]|]| |]; simpl in E2; try done. injection E2 as <-. simpl.
    by rewrite lookup_insert_ne.
  - apply Ho2; [done|]. apply Hc1. simpl. lia.
  - apply Hc2. simpl. lia.
Qed.

#[local] Open Scope N_scope.
(** Two views as a launch creates them. *)
Definition sample_host : ViewHost.t :=
  ViewHost.mk 3 {[ViewId.mk 1 := ViewRecord.mk (ViewId.mk 1) ViewKind.TextBuffer (TaskId.mk 7) 1
                    (Some (ViewFrame.new (ViewId.mk 1) ViewKind.TextBuffer 0 ViewContent.empty_text_buffer 0)) [];
                  ViewId.mk 2 := ViewRecord.mk (ViewId.mk 2) ViewKind.StatusLine (TaskId.mk 7) 2
                    (Some (ViewFrame.new (ViewId.mk 2) ViewKind.StatusLine 0 (ViewContent.status_line []) 0)) []]} 1000.
Definition sample_main : ViewHandleCap.t := ViewHandleCap.new (ViewId.mk 1) (TaskId.mk 7) (ChannelId.mk 8) 1.
Definition sample_status : ViewHandleCap.t := ViewHandleCap.new (ViewId.mk 2) (TaskId.mk 7) (ChannelId.mk 9) 2.

Lemma console_views_are_current_witness :
  ∃ c' host' frame, publish_views (H := sample_format) sample_host sample_main sample_status 5 (ComponentId.mk 3) "CLI"
      (InlineConsole.new (Str.of_string "pg> ") [Str.of_string "ready"]) = Return (c', host') ∧
    ViewHost.get_latest (ViewId.mk 1) host' = Ok (Some frame) ∧
    ViewFrame.content frame = ViewContent.TextBuffer [Str.of_string "ready"; Str.of_string "pg> "].
Proof.
  destruct (console_views_are_current (H := sample_format) (InlineConsole.new (Str.of_string "pg> ") [Str.of_string "ready"])
    sample_host sample_main sample_status 5 (ComponentId.mk 3) "CLI") as (c' & host' & frame & E & Hg & Hc & _).
  - eexists. split; [by vm_compute|]. split; [by vm_compute|]. intros f [= <-]. by vm_compute.
  - eexists. split; [by vm_compute|]. split; [by vm_compute|]. intros f [= <-]. by vm_compute.
  - by vm_compute.
  - by vm_compute.
  - by vm_compute.
  - exists c', host', frame. split; [exact E|]. split; [exact Hg|exact Hc].
Defined.
End ConsoleSpec.
