(* ===== verification/Packages.v ===== *)
(** * Packages, the registry, measured boot and the app store

    [packages/src/lib.rs] (manifests and launch plans), [package_registry/src/lib.rs] (index,
    build plans, lock files), [secure_boot/src/lib.rs] (measurements and boot policies) and
    [services_app_store/src/lib.rs].  SHA-256 with its hexadecimal text ([sha2], [hex]), the
    file system and [serde_json] are interfaces. *)

From S2P Require Import Prelude CoreTypes Resources Editor Text.
Open Scope string_scope.
Open Scope list_scope.
Open Scope N_scope.

(** [hex::encode(Sha256::digest(bytes))]. *)
Class Sha256 := hex_digest : list N → Str.t.
(** The bytes of a literal. *)
Notation lit := Utf8.bytes (only parsing).

(** ** Manifests *)

Module PackageFormatVersion.
(* packages/src/lib.rs:16-26 PackageFormatVersion *)
Record t := new { major : N; minor : N }.
End PackageFormatVersion.

Module PackageComponentType.
(* packages/src/lib.rs:67-74 PackageComponentType *)
Inductive t := Editor | Cli | PipelineExecutor | Custom.
#[global] Instance eq_dec : EqDecision t.
Proof. solve_decision. Defined.
End PackageComponentType.

Module ComponentSpec.
(* packages/src/lib.rs:77-89 ComponentSpec *)
Record t := mk {
  id : Str.t;
  name : Str.t;
  component_type : PackageComponentType.t;
  entry : Str.t;
  focusable : bool;
  metadata : gmap Str.t Str.t;
  budget : option ResourceBudget.t
}.
End ComponentSpec.

Module ComponentLaunchSpec.
(* packages/src/lib.rs:96-105 ComponentLaunchSpec *)
Record t := mk {
  id : Str.t;
  name : Str.t;
  component_type : PackageComponentType.t;
  entry : Str.t;
  focusable : bool;
  metadata : gmap Str.t Str.t;
  budget : option ResourceBudget.t
}.
End ComponentLaunchSpec.

Module PackageError.
(* packages/src/lib.rs:108-127 PackageError *)
Inductive t :=
| ManifestNotFound (path : Str.t)
| Io (text : Str.t)
| Parse (text : Str.t)
| InvalidManifest (text : Str.t)
| DuplicateComponentId (id : Str.t)
| DuplicateComponentName (name : Str.t).
End PackageError.

Module PackageManifest.
(* packages/src/lib.rs:29-35 PackageManifest *)
Record t := mk {
  format_version : PackageFormatVersion.t;
  name : Str.t;
  version : Str.t;
  components : list ComponentSpec.t
}.
(* packages/src/lib.rs:54-59 PackageManifest::validate (empty entry) *)
Definition empty_entry (c : ComponentSpec.t) : PackageError.t :=
  PackageError.InvalidManifest
    (Str.of_string "Component " ++ ComponentSpec.id c ++ Str.of_string " has empty entry").
(* packages/src/lib.rs:45-62 PackageManifest::validate (components) *)
Fixpoint validate_components (ids names : gset Str.t) (l : list ComponentSpec.t) :
    result () PackageError.t :=
  match l with
  | [] => Ok ()
  | c :: l =>
      if decide (ComponentSpec.id c ∈ ids)
      then Err (PackageError.DuplicateComponentId (ComponentSpec.id c))
      else if decide (ComponentSpec.name c ∈ names)
      then Err (PackageError.DuplicateComponentName (ComponentSpec.name c))
      else if decide (Str.trim (ComponentSpec.entry c) = [])
      then Err (empty_entry c)
      else validate_components ({[ComponentSpec.id c]} ∪ ids) ({[ComponentSpec.name c]} ∪ names) l
  end.
(* packages/src/lib.rs:38-63 PackageManifest::validate *)
Definition validate (m : t) : result () PackageError.t :=
  if decide (Str.trim (name m) = [])
  then Err (PackageError.InvalidManifest (Str.of_string "Package name cannot be empty"))
  else validate_components ∅ ∅ (components m).
End PackageManifest.

(** The file system and [serde_json], as far as the loader uses them. *)
Class ManifestFiles := {
  mf_exists : Str.t → bool;
  mf_join : Str.t → Str.t → Str.t;
  mf_read_to_string : Str.t → result Str.t Str.t;
  mf_parse : Str.t → result PackageManifest.t Str.t
}.

Module PackageLoader.
Section loader.
Context `{ManifestFiles}.
(* packages/src/lib.rs:13-13 PACKAGE_MANIFEST_NAME *)
Definition PACKAGE_MANIFEST_NAME : Str.t := Str.of_string "pandagend.json".
(* packages/src/lib.rs:143-150 PackageLoader::load_from_path *)
Definition load_from_path (path : Str.t) : result PackageManifest.t PackageError.t :=
  match mf_read_to_string path with
  | Err e => Err (PackageError.Io e)
  | Ok data =>
      match mf_parse data with
      | Err e => Err (PackageError.Parse e)
      | Ok manifest =>
          match PackageManifest.validate manifest with
          | Err e => Err e
          | Ok _ => Ok manifest
          end
      end
  end.
(* packages/src/lib.rs:133-141 PackageLoader::load_from_dir *)
Definition load_from_dir (dir : Str.t) : result PackageManifest.t PackageError.t :=
  let manifest_path := mf_join dir PACKAGE_MANIFEST_NAME in
  if mf_exists manifest_path then load_from_path manifest_path
  else Err (PackageError.ManifestNotFound manifest_path).
End loader.
End PackageLoader.

Module ComponentLoader.
(* packages/src/lib.rs:164-172 ComponentLoader::build_launch_plan (component) *)
Definition launch_spec (c : ComponentSpec.t) : ComponentLaunchSpec.t :=
  ComponentLaunchSpec.mk (ComponentSpec.id c) (ComponentSpec.name c) (ComponentSpec.component_type c)
    (ComponentSpec.entry c) (ComponentSpec.focusable c) (ComponentSpec.metadata c) (ComponentSpec.budget c).
(* packages/src/lib.rs:157-174 ComponentLoader::build_launch_plan *)
Definition build_launch_plan (m : PackageManifest.t) : result (list ComponentLaunchSpec.t) PackageError.t :=
  match PackageManifest.validate m with
  | Err e => Err e
  | Ok _ => Ok (launch_spec <$> PackageManifest.components m)
  end.
End ComponentLoader.

(** ** The registry *)

Module PackageEntry.
(* package_registry/src/lib.rs:8-13 PackageEntry *)
Record t := mk { name : Str.t; version : Str.t; source_digest : Str.t }.
#[global] Instance eq_dec : EqDecision t.
Proof. solve_decision. Defined.
End PackageEntry.

Module RegistryIndex.
(* package_registry/src/lib.rs:15-18 RegistryIndex *)
Record t := mk { packages : list PackageEntry.t }.
(* package_registry/src/lib.rs:21-23 RegistryIndex::add *)
Definition add (entry : PackageEntry.t) (i : t) : t := mk (packages i ++ [entry]).
(* package_registry/src/lib.rs:25-29 RegistryIndex::find *)
Definition find (name version : Str.t) (i : t) : option PackageEntry.t :=
  snd <$> list_find (λ e, PackageEntry.name e = name ∧ PackageEntry.version e = version) (packages i).
End RegistryIndex.

Module BuildPlan.
(* package_registry/src/lib.rs:32-39 BuildPlan *)
Record t := mk {
  name : Str.t;
  version : Str.t;
  source_digest : Str.t;
  toolchain : Str.t;
  build_flags : list Str.t
}.
(** The bytes given to the hasher. *)
(* package_registry/src/lib.rs:44-55 BuildPlan::reproducible_hash (updates) *)
Definition hashed_bytes (p : t) : list N :=
  Utf8.as_bytes (name p) ++ lit "@" ++ Utf8.as_bytes (version p) ++ lit "|"
  ++ Utf8.as_bytes (source_digest p) ++ lit "|" ++ Utf8.as_bytes (toolchain p) ++ lit "|"
  ++ (build_flags p ≫= λ flag, Utf8.as_bytes flag ++ lit ";").
(* package_registry/src/lib.rs:42-57 BuildPlan::reproducible_hash *)
Definition reproducible_hash `{Sha256} (p : t) : Str.t := hex_digest (hashed_bytes p).
End BuildPlan.

Module RegistryLock.
(* package_registry/src/lib.rs:60-64 RegistryLock *)
Record t := mk { packages : list PackageEntry.t; build_hash : Str.t }.
End RegistryLock.

Module RegistryError.
(* package_registry/src/lib.rs:66-70 RegistryError *)
Inductive t := NotFound (name version : Str.t).
(* package_registry/src/lib.rs:68-69 RegistryError (Display) *)
Definition to_string (e : t) : Str.t :=
  let 'NotFound n v := e in Str.of_string "Package not found: " ++ n ++ Str.of_string "@" ++ v.
End RegistryError.

Module RegistryResolver.
(* package_registry/src/lib.rs:72-79 RegistryResolver *)
Record t := new { index : RegistryIndex.t }.
(* package_registry/src/lib.rs:81-92 RegistryResolver::resolve *)
Definition resolve `{Sha256} (plan : BuildPlan.t) (r : t) : result RegistryLock.t RegistryError.t :=
  match RegistryIndex.find (BuildPlan.name plan) (BuildPlan.version plan) (index r) with
  | None => Err (RegistryError.NotFound (BuildPlan.name plan) (BuildPlan.version plan))
  | Some entry => Ok (RegistryLock.mk [entry] (BuildPlan.reproducible_hash plan))
  end.
End RegistryResolver.

Module SupplyChainReport.
(* package_registry/src/lib.rs:95-99 SupplyChainReport *)
Record t := mk { build_hash : Str.t; sources : gmap Str.t Str.t }.
(* package_registry/src/lib.rs:102-114 SupplyChainReport::from_lock *)
Definition from_lock (lock : RegistryLock.t) : t :=
  mk (RegistryLock.build_hash lock)
     (foldl (λ m pkg, <[PackageEntry.name pkg ++ Str.of_string "@" ++ PackageEntry.version pkg
                        := PackageEntry.source_digest pkg]> m) ∅ (RegistryLock.packages lock)).
End SupplyChainReport.

(** ** Measured boot *)

Module ComponentMeasurement.
(* secure_boot/src/lib.rs:8-12 ComponentMeasurement *)
Record t := mk { name : Str.t; digest : Str.t }.
#[global] Instance eq_dec : EqDecision t.
Proof. solve_decision. Defined.
End ComponentMeasurement.

Module MeasurementLog.
(* secure_boot/src/lib.rs:14-17 MeasurementLog *)
Record t := mk { components : list ComponentMeasurement.t }.
(* secure_boot/src/lib.rs:20-25 MeasurementLog::record *)
Definition record (name digest : Str.t) (l : t) : t :=
  mk (components l ++ [ComponentMeasurement.mk name digest]).
End MeasurementLog.

Module BootPolicy.
(* secure_boot/src/lib.rs:28-31 BootPolicy *)
Record t := mk { required : gmap Str.t Str.t }.
(* secure_boot/src/lib.rs:40-44 BootPolicy::new *)
Definition new : t := mk ∅.
(* secure_boot/src/lib.rs:46-49 BootPolicy::require *)
Definition require (name digest : Str.t) (p : t) : t := mk (<[name := digest]> (required p)).
(** The entries in the order of the [BTreeMap]. *)
Definition entries (p : t) : list (Str.t * Str.t) := btree_iter Utf8.leb (required p).
End BootPolicy.

Module AttestationReport.
(* secure_boot/src/lib.rs:52-56 AttestationReport *)
Record t := mk { measurements : MeasurementLog.t; policy_digest : Str.t }.
End AttestationReport.

Module BootError.
(* secure_boot/src/lib.rs:58-69 BootError *)
Inductive t :=
| MissingComponent (name : Str.t)
| DigestMismatch (name expected actual : Str.t).
End BootError.

Section hashing.
Context `{Sha256}.
(* secure_boot/src/lib.rs:127-131 hash_bytes *)
Definition hash_bytes (bytes : list N) : Str.t := hex_digest bytes.
(* secure_boot/src/lib.rs:134-140 hash_policy (updates) *)
Definition policy_bytes (p : BootPolicy.t) : list N :=
  BootPolicy.entries p ≫= λ '(name, digest),
    Utf8.as_bytes name ++ lit "=" ++ Utf8.as_bytes digest ++ lit ";".
(* secure_boot/src/lib.rs:133-142 hash_policy *)
Definition hash_policy (p : BootPolicy.t) : Str.t := hex_digest (policy_bytes p).
End hashing.

Module BootVerifier.
(* secure_boot/src/lib.rs:71-73 BootVerifier *)
Record t := mk { log : MeasurementLog.t }.
(* secure_boot/src/lib.rs:82-86 BootVerifier::new *)
Definition new : t := mk (MeasurementLog.mk []).
Section verifier.
Context `{Sha256}.
(* secure_boot/src/lib.rs:88-91 BootVerifier::measure_component *)
Definition measure_component (name : Str.t) (bytes : list N) (v : t) : t :=
  mk (MeasurementLog.record name (hash_bytes bytes) (log v)).
(* secure_boot/src/lib.rs:95-100 BootVerifier::verify_policy (lookup) *)
Definition measured (name : Str.t) (v : t) : option Str.t :=
  (λ p, ComponentMeasurement.digest (snd p)) <$>
    list_find (λ c, ComponentMeasurement.name c = name) (MeasurementLog.components (log v)).
(* secure_boot/src/lib.rs:94-111 BootVerifier::verify_policy (loop) *)
Fixpoint verify_entries (l : list (Str.t * Str.t)) (v : t) : result () BootError.t :=
  match l with
  | [] => Ok ()
  | (name, expected) :: l =>
      match measured name v with
      | None => Err (BootError.MissingComponent name)
      | Some actual =>
          if decide (actual = expected) then verify_entries l v
          else Err (BootError.DigestMismatch name expected actual)
      end
  end.
(* secure_boot/src/lib.rs:93-112 BootVerifier::verify_policy *)
Definition verify_policy (policy : BootPolicy.t) (v : t) : result () BootError.t :=
  verify_entries (BootPolicy.entries policy) v.
(* secure_boot/src/lib.rs:114-120 BootVerifier::attest *)
Definition attest (policy : BootPolicy.t) (v : t) : result AttestationReport.t BootError.t :=
  match verify_policy policy v with
  | Err e => Err e
  | Ok _ => Ok (AttestationReport.mk (log v) (hash_policy policy))
  end.
End verifier.
End BootVerifier.

(** ** The app store *)

Module AppListing.
(* services_app_store/src/lib.rs:8-14 AppListing *)
Record t := mk {
  name : Str.t;
  version : Str.t;
  description : Str.t;
  default_budget : ResourceBudget.t
}.
End AppListing.

Module InstallPlan.
(* services_app_store/src/lib.rs:16-20 InstallPlan *)
Record t := mk { package : PackageEntry.t; budget : ResourceBudget.t }.
End InstallPlan.

Module StoreError.
(* services_app_store/src/lib.rs:22-32 StoreError *)
Inductive t :=
| ListingNotFound (name version : Str.t)
| PolicyDenied (reason : Str.t)
| Registry (text : Str.t).
End StoreError.

(** The trait [StorePolicy]: a boxed policy is its method. *)
(* services_app_store/src/lib.rs:34-36 StorePolicy *)
Definition StorePolicy := AppListing.t → result () StoreError.t.
(* services_app_store/src/lib.rs:38-44 AllowAllPolicy *)
Definition AllowAllPolicy : StorePolicy := λ _, Ok ().
(* services_app_store/src/lib.rs:46-62 BudgetCapPolicy::allow *)
Definition BudgetCapPolicy (max_cpu_ticks : option N) : StorePolicy := λ listing,
  match max_cpu_ticks, ResourceBudget.cpu_ticks (AppListing.default_budget listing) with
  | Some max, Some cpu =>
      if max <? Quantity.val cpu
      then Err (StoreError.PolicyDenied (Str.of_string "cpu budget " ++ Str.of_string (pretty (Quantity.val cpu))
                  ++ Str.of_string " exceeds cap " ++ Str.of_string (pretty max)))
      else Ok ()
  | _, _ => Ok ()
  end.

Module AppStorefront.
(* services_app_store/src/lib.rs:64-68 AppStorefront *)
Record t := mk {
  listings : list AppListing.t;
  registry : RegistryResolver.t;
  policy : StorePolicy
}.
#[global] Instance rebuild_t : Rebuild t := λ s, mk (listings s) (registry s) (policy s).
(* services_app_store/src/lib.rs:71-77 AppStorefront::new *)
Definition new (index : RegistryIndex.t) (policy : StorePolicy) : t :=
  mk [] (RegistryResolver.new index) policy.
(* services_app_store/src/lib.rs:79-81 AppStorefront::add_listing *)
Definition add_listing (listing : AppListing.t) (s : t) : t := s <| listings ::= λ l, l ++ [listing] |>.
(* services_app_store/src/lib.rs:88-92 AppStorefront::plan_install (lookup) *)
Definition listed (name version : Str.t) (s : t) : option AppListing.t :=
  snd <$> list_find (λ i, AppListing.name i = name ∧ AppListing.version i = version) (listings s).
(* services_app_store/src/lib.rs:96-102 AppStorefront::plan_install (build plan) *)
Definition build_plan (listing : AppListing.t) : BuildPlan.t :=
  BuildPlan.mk (AppListing.name listing) (AppListing.version listing) [] (Str.of_string "registry") [].
(* services_app_store/src/lib.rs:87-113 AppStorefront::plan_install *)
Definition plan_install `{Sha256} (name version : Str.t) (s : t) :
    outcome (result InstallPlan.t StoreError.t) :=
  match listed name version s with
  | None => Return (Err (StoreError.ListingNotFound name version))
  | Some listing =>
      match policy s listing with
      | Err e => Return (Err e)
      | Ok _ =>
          match RegistryResolver.resolve (build_plan listing) (registry s) with
          | Err e => Return (Err (StoreError.Registry (RegistryError.to_string e)))
          | Ok lock =>
              package ← slice_get (RegistryLock.packages lock) 0;
              Return (Ok (InstallPlan.mk package (AppListing.default_budget listing)))
          end
      end
  end.
End AppStorefront.

(** ** Theorems *)

(** The result of [find] on a list. *)
Section find_lemmas.
Context {A : Type} (P : A → Prop) `{!∀ x, Decision (P x)}.
Lemma list_find_snd_Some l x :
  snd <$> list_find P l = Some x ↔ ∃ l1 l2, l = l1 ++ x :: l2 ∧ P x ∧ Forall (λ y, ¬ P y) l1.
Proof.
  rewrite fmap_Some. split.
  - intros ([i y] & (Hi & Hy & Hf)%list_find_Some & ->). exists (take i l), (drop (S i) l). split.
    + symmetry. by apply take_drop_middle.
    + split; [done|]. apply Forall_lookup. intros j y' Hj. apply lookup_take_Some in Hj as [Hj Hl]. eauto.
  - intros (l1 & l2 & -> & Hx & Hf). exists (length l1, x). split; [|done]. apply list_find_Some.
    split; [by apply list_lookup_middle|]. split; [done|]. intros j y Hj Hl.
    rewrite lookup_app_l in Hj by done. by eapply Forall_lookup_1 in Hf.
Qed.
Lemma list_find_snd_None l : snd <$> list_find P l = None ↔ Forall (λ y, ¬ P y) l.
Proof. by rewrite fmap_None, list_find_None. Qed.
Lemma first_match_unique l1 x l2 k1 y k2 :
  l1 ++ x :: l2 = k1 ++ y :: k2 → P x → P y → Forall (λ z, ¬ P z) l1 → Forall (λ z, ¬ P z) k1 → x = y.
Proof.
  intros E Hx Hy Hl Hk.
  assert (snd <$> list_find P (l1 ++ x :: l2) = Some x) as E1 by (apply list_find_snd_Some; eauto 6).
  assert (snd <$> list_find P (l1 ++ x :: l2) = Some y) as E2 by (rewrite E; apply list_find_snd_Some; eauto 6).
  congruence.
Qed.
End find_lemmas.

Module ManifestSpec.
Import PackageManifest.
Lemma validate_components_Ok ids names l :
  validate_components ids names l = Ok () ↔
  NoDup (ComponentSpec.id <$> l) ∧ (∀ c, c ∈ l → ComponentSpec.id c ∉ ids) ∧
  NoDup (ComponentSpec.name <$> l) ∧ (∀ c, c ∈ l → ComponentSpec.name c ∉ names) ∧
  Forall (λ c, Str.trim (ComponentSpec.entry c) ≠ []) l.
Proof.
  revert ids names. induction l as [|c l IH]; intros ids names; simpl.
  { split; [|done]. intros _. split_and!; try constructor; intros c Hc; by apply elem_of_nil in Hc. }
  rewrite !NoDup_cons, Forall_cons, !list_elem_of_fmap. setoid_rewrite elem_of_cons.
  repeat case_decide; [naive_solver..|]. rewrite IH. setoid_rewrite not_elem_of_union.
  setoid_rewrite not_elem_of_singleton. naive_solver.
Qed.

(** A package is launched exactly when its name and the entries of its components are not
    blank and no two components share an identifier or a name; the plan then has one launch
    specification per component, in the order of the manifest and with all its settings. *)
Theorem launch_plan_exact m plan :
  ComponentLoader.build_launch_plan m = Ok plan ↔
  Str.trim (name m) ≠ [] ∧
  NoDup (ComponentSpec.id <$> components m) ∧ NoDup (ComponentSpec.name <$> components m) ∧
  Forall (λ c, Str.trim (ComponentSpec.entry c) ≠ []) (components m) ∧
  plan = ComponentLoader.launch_spec <$> components m.
Proof.
  unfold ComponentLoader.build_launch_plan, validate. case_decide as Hn; [naive_solver|].
  destruct (validate_components ∅ ∅ (components m)) as [[]|e] eqn:E.
  - apply validate_components_Ok in E. naive_solver.
  - split; [done|]. intros (_ & H1 & H2 & H3 & _).
    assert (validate_components ∅ ∅ (components m) = Ok ()); [|congruence].
    apply validate_components_Ok. set_solver.
Qed.

(** A manifest that the loader returns can be launched. *)
Lemma loaded_manifest_launches `{ManifestFiles} dir m :
  PackageLoader.load_from_dir dir = Ok m → is_ok (ComponentLoader.build_launch_plan m) = true.
Proof.
  unfold PackageLoader.load_from_dir, PackageLoader.load_from_path, ComponentLoader.build_launch_plan.
  destruct (mf_exists _); [|done]. destruct (mf_read_to_string _) as [data|]; [|done].
  destruct (mf_parse data) as [m'|]; [|done]. destruct (validate m') eqn:E; [|done].
  intros [= <-]. by rewrite E.
Qed.
End ManifestSpec.

(** Fields that a separator ends can be read back. *)
Section separators.
Implicit Types s : N.
Lemma split_at_separator s (a a' b b' : list N) :
  s ∉ a → s ∉ a' → a ++ s :: b = a' ++ s :: b' → a = a' ∧ b = b'.
Proof.
  revert a'. induction a as [|x a IH]; intros [|y a'] Ha Ha' E; simpl in *.
  - naive_solver.
  - injection E as <- _. set_solver.
  - injection E as -> _. set_solver.
  - injection E as -> E. destruct (IH a') as [-> ->]; set_solver.
Qed.
Definition free_of (s : N) (text : Str.t) : Prop := Forall Utf8.scalar text ∧ s ∉ text.
#[global] Instance free_of_dec s text : Decision (free_of s text).
Proof. apply _. Defined.
Lemma split_separated s t t' (b b' : list N) :
  s < 0x80 → free_of s t → free_of s t' →
  Utf8.as_bytes t ++ s :: b = Utf8.as_bytes t' ++ s :: b' → t = t' ∧ b = b'.
Proof.
  intros Hs [Ht Hst] [Ht' Hst'] E. apply split_at_separator in E as [E ->].
  - split; [|done]. by apply Utf8.as_bytes_inj.
  - intros ?%Utf8.elem_of_as_bytes_ascii; done.
  - intros ?%Utf8.elem_of_as_bytes_ascii; done.
Qed.
Lemma join_inj s (l l' : list Str.t) :
  s < 0x80 → Forall (free_of s) l → Forall (free_of s) l' →
  (l ≫= λ t, Utf8.as_bytes t ++ [s]) = (l' ≫= λ t, Utf8.as_bytes t ++ [s]) → l = l'.
Proof.
  intros Hs Hl. revert l'. induction Hl as [|t l Ht Hl IH]; intros [|t' l'] Hl' E; [done| | |].
  - symmetry in E. by apply app_eq_nil in E as [[_ ?]%app_eq_nil _].
  - by apply app_eq_nil in E as [[_ ?]%app_eq_nil _].
  - inversion_clear Hl' as [|?? Ht' Hl'']. simpl in E. rewrite <-!app_assoc in E.
    apply split_separated in E as [-> E]; [|done..]. f_equal. by apply IH.
Qed.
End separators.

Module RegistrySpec.
(** The fields of a build plan without the separators that end them. *)
Definition plan_ok (p : BuildPlan.t) : Prop :=
  free_of 64 (BuildPlan.name p) ∧ free_of 124 (BuildPlan.version p)
  ∧ free_of 124 (BuildPlan.source_digest p) ∧ free_of 124 (BuildPlan.toolchain p)
  ∧ Forall (free_of 59) (BuildPlan.build_flags p).

Lemma hashed_bytes_inj p q :
  plan_ok p → plan_ok q → BuildPlan.hashed_bytes p = BuildPlan.hashed_bytes q → p = q.
Proof.
  destruct p as [n v d t f], q as [n' v' d' t' f']. intros (?&?&?&?&?) (?&?&?&?&?) E.
  unfold BuildPlan.hashed_bytes in E. simpl in *.
  apply split_separated in E as [-> E]; [|done..]. apply split_separated in E as [-> E]; [|done..].
  apply split_separated in E as [-> E]; [|done..]. apply split_separated in E as [-> E]; [|done..].
  f_equal. by eapply (join_inj 59).
Qed.

(** Two build plans whose fields do not contain the separators and whose texts the hash
    function does not collide on have the same reproducible hash only when they are the same
    plan: name, version, source digest, toolchain and the list of flags in its order. *)
Theorem build_hash_identifies_plan `{Sha256} p q :
  plan_ok p → plan_ok q →
  (hex_digest (BuildPlan.hashed_bytes p) = hex_digest (BuildPlan.hashed_bytes q) →
   BuildPlan.hashed_bytes p = BuildPlan.hashed_bytes q) →
  BuildPlan.reproducible_hash p = BuildPlan.reproducible_hash q → p = q.
Proof. intros Hp Hq Hh E. apply hashed_bytes_inj; auto. Qed.

(** The flags ["a";"b"] and the one flag ["a;b"] have the same hash, whatever the hash function. *)
Lemma separator_in_flag_collides `{Sha256} n v d t :
  BuildPlan.reproducible_hash (BuildPlan.mk n v d t [Str.of_string "a"; Str.of_string "b"]) =
  BuildPlan.reproducible_hash (BuildPlan.mk n v d t [Str.of_string "a;b"]).
Proof. done. Qed.

(** Resolving a plan succeeds exactly when the index lists its name and version; the lock
    holds the first entry that does and the hash of the plan, and the supply-chain report of
    the lock names that one source. *)
Theorem resolve_takes_first_entry `{Sha256} plan r lock :
  RegistryResolver.resolve plan r = Ok lock ↔
  ∃ l1 e l2, RegistryIndex.packages (RegistryResolver.index r) = l1 ++ e :: l2 ∧
    PackageEntry.name e = BuildPlan.name plan ∧ PackageEntry.version e = BuildPlan.version plan ∧
    Forall (λ e', ¬ (PackageEntry.name e' = BuildPlan.name plan ∧
                     PackageEntry.version e' = BuildPlan.version plan)) l1 ∧
    lock = RegistryLock.mk [e] (BuildPlan.reproducible_hash plan) ∧
    SupplyChainReport.sources (SupplyChainReport.from_lock lock) =
      {[ BuildPlan.name plan ++ Str.of_string "@" ++ BuildPlan.version plan := PackageEntry.source_digest e ]}.
Proof.
  unfold RegistryResolver.resolve, RegistryIndex.find. split.
  - destruct (snd <$> _) as [e|] eqn:E; [|done]. intros [= <-].
    apply list_find_snd_Some in E as (l1 & l2 & E & [E1 E2] & Hf). exists l1, e, l2.
    split_and!; [done..|]. unfold SupplyChainReport.from_lock. simpl. rewrite E1, E2. done.
  - intros (l1 & e & l2 & E & E1 & E2 & Hf & -> & _).
    destruct (snd <$> _) as [e'|] eqn:E'.
    + apply list_find_snd_Some in E' as (k1 & k2 & E' & He' & Hk). rewrite E in E'.
      by rewrite (first_match_unique _ _ _ _ _ _ _ E' (conj E1 E2) He' Hf Hk).
    + apply list_find_snd_None in E'. rewrite E, Forall_app, Forall_cons in E'. naive_solver.
Qed.
End RegistrySpec.

Module BootSpec.
Section boot.
Context `{Sha256}.

(** A boot: the components are measured in this order. *)
Definition boot (ms : list (Str.t * list N)) : BootVerifier.t :=
  foldl (λ v '(name, bytes), BootVerifier.measure_component name bytes v) BootVerifier.new ms.

Lemma boot_log ms :
  MeasurementLog.components (BootVerifier.log (boot ms)) =
  (λ '(name, bytes), ComponentMeasurement.mk name (hash_bytes bytes)) <$> ms.
Proof.
  induction ms as [|[n b] ms IH] using rev_ind; [done|].
  unfold boot in *. rewrite foldl_app, fmap_app. simpl. by rewrite IH.
Qed.

(** The first measurement of a component. *)
Definition first_measured (name : Str.t) (ms : list (Str.t * list N)) : option (list N) :=
  (λ p, snd (snd p)) <$> list_find (λ m, fst m = name) ms.

Lemma measured_boot name ms :
  BootVerifier.measured name (boot ms) = hash_bytes <$> first_measured name ms.
Proof.
  unfold BootVerifier.measured. rewrite boot_log. unfold first_measured.
  rewrite list_find_fmap. rewrite <-!option_fmap_compose.
  replace (list_find ((λ c, ComponentMeasurement.name c = name) ∘ _) ms)
    with (list_find (λ m : Str.t * list N, m.1 = name) ms) by (apply list_find_ext; intros []; done).
  destruct (list_find _ ms) as [[i [n b]]|]; done.
Qed.

Lemma verify_entries_Ok l v :
  BootVerifier.verify_entries l v = Ok () ↔ ∀ name d, (name, d) ∈ l → BootVerifier.measured name v = Some d.
Proof.
  induction l as [|[n e] l IH]; simpl.
  { split; [|done]. intros _ n d []%elem_of_nil. }
  destruct (BootVerifier.measured n v) as [a|] eqn:E.
  - case_decide as Ha; [rewrite IH|]; split; try done.
    + intros Hl n' d' [[= -> ->]|Hin]%elem_of_cons; [congruence|eauto].
    + intros Hl n' d' Hin. apply Hl. by right.
    + intros Hl. specialize (Hl n e ltac:(by left)). congruence.
  - split; [done|]. intros Hl. specialize (Hl n e ltac:(by left)). congruence.
Qed.

Lemma verify_boot ms policy :
  BootVerifier.verify_policy policy (boot ms) = Ok () ↔
  ∀ name d, BootPolicy.required policy !! name = Some d →
    ∃ bytes, first_measured name ms = Some bytes ∧ hash_bytes bytes = d.
Proof.
  unfold BootVerifier.verify_policy. rewrite verify_entries_Ok. unfold BootPolicy.entries.
  setoid_rewrite elem_of_btree_iter. setoid_rewrite measured_boot. split; intros Hr n d Hn.
  - destruct (first_measured n ms) as [b|] eqn:E; specialize (Hr n d Hn); rewrite E in Hr; [|done].
    injection Hr as <-. eauto.
  - destruct (Hr n d Hn) as (b & -> & <-). done.
Qed.

(** A boot is attested exactly when the first measurement of every component the policy
    requires has the required digest, components the policy does not name being free; the report
    lists every measurement in order. *)
Theorem attested_boots_match_policy ms policy report :
  BootVerifier.attest policy (boot ms) = Ok report ↔
  (∀ name d, BootPolicy.required policy !! name = Some d →
     ∃ bytes, first_measured name ms = Some bytes ∧ hash_bytes bytes = d) ∧
  MeasurementLog.components (AttestationReport.measurements report) =
    (λ '(name, bytes), ComponentMeasurement.mk name (hash_bytes bytes)) <$> ms ∧
  AttestationReport.policy_digest report = hash_policy policy.
Proof.
  rewrite <-boot_log, <-verify_boot. unfold BootVerifier.attest.
  destruct (BootVerifier.verify_policy _ _) as [[]|e].
  - destruct report as [[l] d], (BootVerifier.log (boot ms)) as [l'] eqn:El. simpl.
    split; [by intros [= -> ->]|by intros (_ & -> & ->)].
  - split; [done|by intros [? _]].
Qed.

(** A component that is replaced and measured again after a good measurement passes. *)
Lemma remeasured_component_passes name good evil :
  BootVerifier.verify_policy (BootPolicy.require name (hash_bytes good) BootPolicy.new)
    (boot [(name, good); (name, evil)]) = Ok ().
Proof.
  apply verify_boot. intros n d. simpl. rewrite insert_empty, lookup_singleton_Some.
  intros [<- <-]. exists good. split; [|done]. unfold first_measured. simpl. by rewrite decide_True.
Qed.

(** Names and digests without the separators. *)
Definition policy_ok (p : BootPolicy.t) : Prop :=
  map_Forall (λ name d, free_of 61 name ∧ free_of 59 d) (BootPolicy.required p).

Lemma entries_inj l l' :
  Forall (λ '(n, d), free_of 61 n ∧ free_of 59 d) l → Forall (λ '(n, d), free_of 61 n ∧ free_of 59 d) l' →
  (l ≫= λ '(n, d), Utf8.as_bytes n ++ Utf8.bytes "=" ++ Utf8.as_bytes d ++ Utf8.bytes ";") =
  (l' ≫= λ '(n, d), Utf8.as_bytes n ++ Utf8.bytes "=" ++ Utf8.as_bytes d ++ Utf8.bytes ";") → l = l'.
Proof.
  intros Hl. revert l'. induction Hl as [|[n d] l [Hn Hd] Hl IH]; intros [|[n' d'] l'] Hl' E; [done| | |].
  - symmetry in E. simpl in E. by destruct (Utf8.as_bytes n').
  - simpl in E. by destruct (Utf8.as_bytes n).
  - apply Forall_cons in Hl' as [Hnd Hl'']. simpl in Hnd. destruct Hnd as [Hn' Hd']. simpl in E. rewrite <-!app_assoc in E. simpl in E.
    apply split_separated in E as [-> E]; [|done..]. rewrite <-!app_assoc in E.
    apply split_separated in E as [-> E]; [|done..]. f_equal. by apply IH.
Qed.

(** Two boot policies whose names have no equals sign and whose digests no semicolon, and
    whose texts the hash function does not collide on, have the same policy digest only when
    they require the same components with the same digests. *)
Theorem policy_digest_identifies_policy p q :
  policy_ok p → policy_ok q →
  (hex_digest (policy_bytes p) = hex_digest (policy_bytes q) → policy_bytes p = policy_bytes q) →
  hash_policy p = hash_policy q → p = q.
Proof.
  intros Hp Hq Hh E. destruct p as [p], q as [q]. f_equal.
  assert (BootPolicy.entries (BootPolicy.mk p) = BootPolicy.entries (BootPolicy.mk q)) as El.
  { apply entries_inj; [..|by apply Hh];
      apply Forall_forall; intros [n d] Hin%elem_of_btree_iter; [by apply Hp|by apply Hq]. }
  unfold BootPolicy.entries in El. simpl in El. apply map_eq. intros k. apply option_eq. intros d.
  by rewrite <-!elem_of_btree_iter, El.
Qed.
End boot.
End BootSpec.

Module StoreSpec.
(** An installation is planned exactly when the first listing of the name and version passes
    the policy and the registry has an entry of that name and version: the plan has the first such
    entry and the budget of the listing, and planning never panics. *)
Theorem install_needs_listing_policy_and_entry `{Sha256} name version s :
  AppStorefront.plan_install name version s =
  Return
    match AppStorefront.listed name version s with
    | None => Err (StoreError.ListingNotFound name version)
    | Some listing =>
        match AppStorefront.policy s listing with
        | Err e => Err e
        | Ok _ =>
            match RegistryIndex.find name version (RegistryResolver.index (AppStorefront.registry s)) with
            | None => Err (StoreError.Registry (RegistryError.to_string (RegistryError.NotFound name version)))
            | Some entry => Ok (InstallPlan.mk entry (AppListing.default_budget listing))
            end
        end
    end.
Proof.
  unfold AppStorefront.plan_install. destruct (AppStorefront.listed _ _ _) as [l|] eqn:E; [|done].
  unfold AppStorefront.listed in E. apply list_find_snd_Some in E as (_ & _ & _ & [E1 E2] & _).
  destruct (AppStorefront.policy s l); [|done]. unfold RegistryResolver.resolve. simpl.
  rewrite E1, E2. by destruct (RegistryIndex.find _ _ _).
Qed.

(** A listing without a limit passes every cap on processor time. *)
Lemma unlimited_app_passes_every_cap cap name version description :
  BudgetCapPolicy cap (AppListing.mk name version description ResourceBudget.unlimited) = Ok ().
Proof. by destruct cap. Qed.
End StoreSpec.

Module PackageExample.
(** A hash function without collisions. *)
#[local] Instance identity_hash : Sha256 := λ bytes, bytes.
Definition plan : BuildPlan.t :=
  BuildPlan.mk (Str.of_string "editor") (Str.of_string "1.0") (Str.of_string "ab12")
    (Str.of_string "rustc") [Str.of_string "-O"].
Definition same_plan : BuildPlan.t :=
  BuildPlan.mk (Str.of_string "edit" ++ Str.of_string "or") (Str.of_string "1.0") (Str.of_string "ab12")
    (Str.of_string "rustc") [Str.of_string "-O"].
Lemma build_hash_identifies_plan_witness :
  BuildPlan.reproducible_hash plan = BuildPlan.reproducible_hash same_plan ∧ plan = same_plan.
Proof.
  split; [reflexivity|]. apply RegistrySpec.build_hash_identifies_plan; [| |done|reflexivity];
    unfold RegistrySpec.plan_ok; split_and!; apply (bool_decide_unpack _); vm_compute; exact I.
Defined.
Definition policy : BootPolicy.t :=
  BootPolicy.require (Str.of_string "kernel") (Str.of_string "00ff") BootPolicy.new.
Definition same_policy : BootPolicy.t :=
  BootPolicy.require (Str.of_string "kernel") (Str.of_string "00ff")
    (BootPolicy.require (Str.of_string "kernel") (Str.of_string "11ee") BootPolicy.new).
Lemma policy_digest_identifies_policy_witness :
  hash_policy policy = hash_policy same_policy ∧ policy = same_policy.
Proof.
  split; [vm_compute; reflexivity|].
  apply BootSpec.policy_digest_identifies_policy; [| |done|vm_compute; reflexivity];
    unfold BootSpec.policy_ok; apply (bool_decide_unpack _); vm_compute; exact I.
Defined.
End PackageExample.
