(* ===== verification/Settings.v ===== *)
(** * Settings and notifications

    [services_settings/src/{lib,persistence}.rs]: defaults, overrides per user, and their
    persistence; [services_notification/src/lib.rs].  [BTreeMap] is [gmap], iterated in the
    order of the keys; [serde_json] is the interface [SettingsJson]. *)

From S2P Require Import Prelude Editor Text.
Open Scope string_scope.
Open Scope list_scope.
Open Scope N_scope.

(** ** Settings *)

(** The user's name. *)
Notation UserId := Str.t.

Module SettingKey.
(* services_settings/src/lib.rs:50-57 SettingKey *)
Record t := new { as_str : Str.t }.
#[global] Instance eq_dec : EqDecision t.
Proof. solve_decision. Defined.
#[global] Instance countable : Countable t.
Proof. apply (inj_countable' as_str new). by intros []. Defined.
(* services_settings/src/lib.rs:65-67 SettingKey::starts_with *)
Definition starts_with (prefix : Str.t) (k : t) : bool := Str.starts_with prefix (as_str k).
(** The derived order. *)
Definition leb (a b : t) : bool := Utf8.leb (as_str a) (as_str b).
End SettingKey.

Module SettingValue.
(** An [f64] is its 64 bits, an [i64] an integer. *)
(* services_settings/src/lib.rs:83-95 SettingValue *)
Inductive t :=
| Boolean (b : bool)
| Integer (i : Z)
| Float (bits : N)
| String (s : Str.t)
| StringList (l : list Str.t).
#[global] Instance eq_dec : EqDecision t.
Proof. solve_decision. Defined.
(* services_settings/src/lib.rs:99-101 SettingValue::is_boolean *)
Definition is_boolean (v : t) : bool := match v with Boolean _ => true | _ => false end.
(* services_settings/src/lib.rs:104-106 SettingValue::is_integer *)
Definition is_integer (v : t) : bool := match v with Integer _ => true | _ => false end.
(* services_settings/src/lib.rs:109-111 SettingValue::is_float *)
Definition is_float (v : t) : bool := match v with Float _ => true | _ => false end.
(* services_settings/src/lib.rs:114-116 SettingValue::is_string *)
Definition is_string (v : t) : bool := match v with String _ => true | _ => false end.
(* services_settings/src/lib.rs:119-121 SettingValue::is_string_list *)
Definition is_string_list (v : t) : bool := match v with StringList _ => true | _ => false end.
(* services_settings/src/lib.rs:124-129 SettingValue::as_boolean *)
Definition as_boolean (v : t) : option bool := match v with Boolean b => Some b | _ => None end.
(* services_settings/src/lib.rs:132-137 SettingValue::as_integer *)
Definition as_integer (v : t) : option Z := match v with Integer i => Some i | _ => None end.
(* services_settings/src/lib.rs:140-145 SettingValue::as_float *)
Definition as_float (v : t) : option N := match v with Float f => Some f | _ => None end.
(* services_settings/src/lib.rs:148-153 SettingValue::as_string *)
Definition as_string (v : t) : option Str.t := match v with String s => Some s | _ => None end.
(* services_settings/src/lib.rs:156-161 SettingValue::as_string_list *)
Definition as_string_list (v : t) : option (list Str.t) :=
  match v with StringList l => Some l | _ => None end.
(** Infinities and not-a-numbers have no JSON text. *)
Definition finite (v : t) : bool :=
  match v with Float bits => negb (N.land (N.shiftr bits 52) 0x7FF =? 0x7FF) | _ => true end.
End SettingValue.

(** Overrides: settings per user. *)
Notation Overrides := (gmap UserId (gmap SettingKey.t SettingValue.t)).

Module SettingsRegistry.
(* services_settings/src/lib.rs:180-185 SettingsRegistry *)
Record t := mk { defaults : gmap SettingKey.t SettingValue.t; user_overrides : Overrides }.
#[global] Instance rebuild_t : Rebuild t := λ r, mk (defaults r) (user_overrides r).
(* services_settings/src/lib.rs:189-194 SettingsRegistry::new *)
Definition new : t := mk ∅ ∅.
(* services_settings/src/lib.rs:197-199 SettingsRegistry::register_default *)
Definition register_default (key : SettingKey.t) (value : SettingValue.t) (r : t) : t :=
  r <| defaults ::= <[key := value]> |>.
(** [entry(user_id).or_default()]. *)
Definition overrides_of (user_id : UserId) (r : t) : gmap SettingKey.t SettingValue.t :=
  default ∅ (user_overrides r !! user_id).
(* services_settings/src/lib.rs:202-215 SettingsRegistry::set_user_override *)
Definition set_user_override (user_id : UserId) (key : SettingKey.t) (value : SettingValue.t) (r : t) : t :=
  r <| user_overrides ::= <[user_id := <[key := value]> (overrides_of user_id r)]> |>.
(* services_settings/src/lib.rs:218-224 SettingsRegistry::remove_user_override *)
Definition remove_user_override (user_id : UserId) (key : SettingKey.t) (r : t) : bool * t :=
  match user_overrides r !! user_id with
  | Some user_settings =>
      (bool_decide (is_Some (user_settings !! key)),
       r <| user_overrides ::= <[user_id := delete key user_settings]> |>)
  | None => (false, r)
  end.
(* services_settings/src/lib.rs:227-237 SettingsRegistry::get *)
Definition get (user_id : UserId) (key : SettingKey.t) (r : t) : option SettingValue.t :=
  match user_overrides r !! user_id with
  | Some user_settings =>
      match user_settings !! key with
      | Some value => Some value
      | None => defaults r !! key
      end
  | None => defaults r !! key
  end.
(* services_settings/src/lib.rs:240-242 SettingsRegistry::get_default *)
Definition get_default (key : SettingKey.t) (r : t) : option SettingValue.t := defaults r !! key.
(* services_settings/src/lib.rs:245-249 SettingsRegistry::get_user_override *)
Definition get_user_override (user_id : UserId) (key : SettingKey.t) (r : t) : option SettingValue.t :=
  user_overrides r !! user_id ≫= λ settings, settings !! key.
(** Iteration over a [BTreeMap]. *)
Definition iter (m : gmap SettingKey.t SettingValue.t) : list (SettingKey.t * SettingValue.t) :=
  btree_iter SettingKey.leb m.
(* services_settings/src/lib.rs:252-254 SettingsRegistry::list_defaults *)
Definition list_defaults (r : t) : list SettingKey.t := (iter (defaults r)).*1.
(* services_settings/src/lib.rs:257-262 SettingsRegistry::list_user_overrides *)
Definition list_user_overrides (user_id : UserId) (r : t) : list SettingKey.t :=
  match user_overrides r !! user_id with Some settings => (iter settings).*1 | None => [] end.
(* services_settings/src/lib.rs:278-285 SettingsRegistry::list_with_prefix (override) *)
Definition override_entry (prefix : Str.t) (results : list (SettingKey.t * SettingValue.t))
    (entry : SettingKey.t * SettingValue.t) : list (SettingKey.t * SettingValue.t) :=
  if SettingKey.starts_with prefix entry.1 then
    match list_find (λ e, e.1 = entry.1) results with
    | Some (pos, _) => <[pos := entry]> results
    | None => results ++ [entry]
    end
  else results.
(* services_settings/src/lib.rs:265-290 SettingsRegistry::list_with_prefix *)
Definition list_with_prefix (user_id : UserId) (prefix : Str.t) (r : t) :
    list (SettingKey.t * SettingValue.t) :=
  let results := filter (λ e, SettingKey.starts_with prefix e.1 = true) (iter (defaults r)) in
  match user_overrides r !! user_id with
  | Some user_settings => foldl (override_entry prefix) results (iter user_settings)
  | None => results
  end.
(* services_settings/src/lib.rs:293-295 SettingsRegistry::clear_user_overrides *)
Definition clear_user_overrides (user_id : UserId) (r : t) : t := r <| user_overrides ::= delete user_id |>.
(* services_settings/src/lib.rs:298-300 SettingsRegistry::reset_to_default *)
Definition reset_to_default (user_id : UserId) (key : SettingKey.t) (r : t) : bool * t :=
  remove_user_override user_id key r.
(* services_settings/src/lib.rs:303-305 SettingsRegistry::export_overrides *)
Definition export_overrides (r : t) : Overrides := user_overrides r.
(* services_settings/src/lib.rs:308-313 SettingsRegistry::import_overrides *)
Definition import_overrides (overrides : Overrides) (r : t) : t := r <| user_overrides := overrides |>.
(* services_settings/src/lib.rs:316-326 SettingsRegistry::apply_user_overrides *)
Definition apply_user_overrides (user_id : UserId) (overrides : gmap SettingKey.t SettingValue.t) (r : t) : t :=
  r <| user_overrides ::= <[user_id := overrides ∪ overrides_of user_id r]> |>.
End SettingsRegistry.

Module Keys.
Definition key (s : string) : SettingKey.t := SettingKey.new (Str.of_string s).
(* services_settings/src/lib.rs:337-337 keys::EDITOR_TAB_SIZE *)
Definition EDITOR_TAB_SIZE := key "editor.tab_size".
(* services_settings/src/lib.rs:338-338 keys::EDITOR_USE_SPACES *)
Definition EDITOR_USE_SPACES := key "editor.use_spaces".
(* services_settings/src/lib.rs:339-339 keys::EDITOR_LINE_NUMBERS *)
Definition EDITOR_LINE_NUMBERS := key "editor.line_numbers".
(* services_settings/src/lib.rs:340-340 keys::EDITOR_WORD_WRAP *)
Definition EDITOR_WORD_WRAP := key "editor.word_wrap".
(* services_settings/src/lib.rs:341-341 keys::THEME_NAME *)
Definition THEME_NAME := key "theme.name".
(* services_settings/src/lib.rs:342-342 keys::THEME_FONT_SIZE *)
Definition THEME_FONT_SIZE := key "theme.font_size".
(* services_settings/src/lib.rs:343-343 keys::KEYBINDING_COMMAND_PALETTE *)
Definition KEYBINDING_COMMAND_PALETTE := key "keybinding.command_palette".
(* services_settings/src/lib.rs:344-344 keys::UI_SHOW_STATUS_BAR *)
Definition UI_SHOW_STATUS_BAR := key "ui.show_status_bar".
(* services_settings/src/lib.rs:345-345 keys::UI_RECENT_FILES_LIMIT *)
Definition UI_RECENT_FILES_LIMIT := key "ui.recent_files_limit".
(* services_settings/src/lib.rs:346-346 keys::UI_SHOW_KEYBINDING_HINTS *)
Definition UI_SHOW_KEYBINDING_HINTS := key "ui.show_keybinding_hints".
(* services_settings/src/lib.rs:347-347 keys::UI_THEME *)
Definition UI_THEME := key "ui.theme".
(* services_settings/src/lib.rs:348-348 keys::KEYBINDINGS_PROFILE *)
Definition KEYBINDINGS_PROFILE := key "keybindings.profile".
End Keys.

(* services_settings/src/lib.rs:352-385 create_default_registry *)
Definition create_default_registry : SettingsRegistry.t :=
  foldl (λ r '(k, v), SettingsRegistry.register_default k v r) SettingsRegistry.new
    [ (Keys.EDITOR_TAB_SIZE, SettingValue.Integer 4);
      (Keys.EDITOR_USE_SPACES, SettingValue.Boolean true);
      (Keys.EDITOR_LINE_NUMBERS, SettingValue.Boolean true);
      (Keys.EDITOR_WORD_WRAP, SettingValue.Boolean false);
      (Keys.THEME_NAME, SettingValue.String (Str.of_string "default"));
      (Keys.THEME_FONT_SIZE, SettingValue.Integer 14);
      (Keys.KEYBINDING_COMMAND_PALETTE, SettingValue.String (Str.of_string "Ctrl+P"));
      (Keys.KEYBINDINGS_PROFILE, SettingValue.String (Str.of_string "default"));
      (Keys.UI_SHOW_STATUS_BAR, SettingValue.Boolean true);
      (Keys.UI_RECENT_FILES_LIMIT, SettingValue.Integer 10);
      (Keys.UI_SHOW_KEYBINDING_HINTS, SettingValue.Boolean true);
      (Keys.UI_THEME, SettingValue.String (Str.of_string "default")) ].

(** ** Persistence *)

Module PersistenceError.
(* services_settings/src/persistence.rs:76-84 PersistenceError *)
Inductive t :=
| SerializationFailed (text : Str.t)
| DeserializationFailed (text : Str.t)
| UnsupportedVersion (version : N).
(* services_settings/src/persistence.rs:86-100 PersistenceError::fmt *)
Definition to_string (e : t) : Str.t :=
  match e with
  | SerializationFailed msg => Str.of_string "Failed to serialize settings: " ++ msg
  | DeserializationFailed msg => Str.of_string "Failed to deserialize settings: " ++ msg
  | UnsupportedVersion v => Str.of_string "Unsupported settings version: " ++ Str.of_string (pretty v)
  end.
End PersistenceError.

Module SettingsOverridesData.
(* services_settings/src/persistence.rs:16-22 SettingsOverridesData *)
Record t := mk { version : N; user_overrides : gmap UserId (gmap Str.t SettingValue.t) }.
(* services_settings/src/persistence.rs:26-26 SettingsOverridesData::CURRENT_VERSION *)
Definition CURRENT_VERSION : N := 1.
(* services_settings/src/persistence.rs:29-34 SettingsOverridesData::new *)
Definition new : t := mk CURRENT_VERSION ∅.
(* services_settings/src/persistence.rs:43-46 SettingsOverridesData::from_overrides (user) *)
Definition from_settings (settings : gmap SettingKey.t SettingValue.t) : gmap Str.t SettingValue.t :=
  foldl (λ m '(key, value), <[SettingKey.as_str key := value]> m) ∅ (SettingsRegistry.iter settings).
(* services_settings/src/persistence.rs:37-50 SettingsOverridesData::from_overrides *)
Definition from_overrides (o : Overrides) : t :=
  mk CURRENT_VERSION
    (foldl (λ m '(user_id, settings), <[user_id := from_settings settings]> m) ∅ (btree_iter Utf8.leb o)).
(* services_settings/src/persistence.rs:56-59 SettingsOverridesData::to_overrides (user) *)
Definition to_settings (settings : gmap Str.t SettingValue.t) : gmap SettingKey.t SettingValue.t :=
  foldl (λ m '(key, value), <[SettingKey.new key := value]> m) ∅ (btree_iter Utf8.leb settings).
(* services_settings/src/persistence.rs:53-63 SettingsOverridesData::to_overrides *)
Definition to_overrides (d : t) : Overrides :=
  foldl (λ m '(user_id, settings), <[user_id := to_settings settings]> m) ∅
    (btree_iter Utf8.leb (user_overrides d)).
(** Every value has a JSON text. *)
Definition finite (d : t) : Prop :=
  map_Forall (λ _, map_Forall (λ _ v, SettingValue.finite v = true)) (user_overrides d).
End SettingsOverridesData.

(** [serde_json::to_vec_pretty] and [serde_json::from_slice] on this type. *)
Class SettingsJson := {
  to_vec_pretty : SettingsOverridesData.t → result (list N) Str.t;
  from_slice : list N → result SettingsOverridesData.t Str.t
}.
(** Documents without infinities round trip. *)
Class LawfulSettingsJson `{SettingsJson} : Prop :=
  from_slice_to_vec d : SettingsOverridesData.finite d →
    ∃ bytes, to_vec_pretty d = Ok bytes ∧ from_slice bytes = Ok d.

Section persistence.
Context `{SettingsJson}.
(* services_settings/src/persistence.rs:103-106 serialize_overrides *)
Definition serialize_overrides (data : SettingsOverridesData.t) : result (list N) PersistenceError.t :=
  map_err PersistenceError.SerializationFailed (to_vec_pretty data).
(* services_settings/src/persistence.rs:109-119 deserialize_overrides *)
Definition deserialize_overrides (bytes : list N) : result SettingsOverridesData.t PersistenceError.t :=
  match from_slice bytes with
  | Err e => Err (PersistenceError.DeserializationFailed e)
  | Ok data =>
      if negb (SettingsOverridesData.version data =? SettingsOverridesData.CURRENT_VERSION)
      then Err (PersistenceError.UnsupportedVersion (SettingsOverridesData.version data))
      else Ok data
  end.
(* services_settings/src/persistence.rs:122-124 load_overrides_safe *)
Definition load_overrides_safe (bytes : list N) : SettingsOverridesData.t :=
  match deserialize_overrides bytes with Ok d => d | Err _ => SettingsOverridesData.new end.
End persistence.

(** ** Notifications *)

Module NotificationLevel.
(* services_notification/src/lib.rs:113-123 NotificationLevel *)
Inductive t := Info | Success | Warning | Error.
#[global] Instance eq_dec : EqDecision t.
Proof. solve_decision. Defined.
(* services_notification/src/lib.rs:125-134 NotificationLevel::fmt *)
Definition to_string (l : t) : string :=
  match l with Info => "INFO" | Success => "SUCCESS" | Warning => "WARNING" | Error => "ERROR" end.
End NotificationLevel.

Module NotificationType.
(* services_notification/src/lib.rs:137-143 NotificationType *)
Inductive t := Toast | Status.
#[global] Instance eq_dec : EqDecision t.
Proof. solve_decision. Defined.
End NotificationType.

Module NotificationId.
(* services_notification/src/lib.rs:80-98 NotificationId *)
Record t := from_uuid { as_uuid : Uuid }.
#[global] Instance eq_dec : EqDecision t.
Proof. solve_decision. Defined.
End NotificationId.

Module Notification.
(* services_notification/src/lib.rs:146-165 Notification *)
Record t := mk {
  id : NotificationId.t;
  level : NotificationLevel.t;
  notification_type : NotificationType.t;
  message : Str.t;
  source : option Str.t;
  timestamp_ns : N;
  dismissed : bool;
  ttl_ns : N
}.
#[global] Instance rebuild_t : Rebuild t := λ n,
  mk (id n) (level n) (notification_type n) (message n) (source n) (timestamp_ns n) (dismissed n) (ttl_ns n).
#[global] Instance eq_dec : EqDecision t.
Proof. solve_decision. Defined.
(* services_notification/src/lib.rs:169-185 Notification::new *)
Definition new (drawn : Uuid) (level : NotificationLevel.t) (ty : NotificationType.t) (message : Str.t)
    (timestamp_ns : N) : t :=
  mk (NotificationId.from_uuid drawn) level ty message None timestamp_ns false 0.
(* services_notification/src/lib.rs:248-251 Notification::with_ttl *)
Definition with_ttl (ttl : N) (n : t) : t := n <| ttl_ns := ttl |>.
(* services_notification/src/lib.rs:242-245 Notification::with_source *)
Definition with_source (s : Str.t) (n : t) : t := n <| source := Some s |>.
(* services_notification/src/lib.rs:188-196 Notification::info *)
Definition info (drawn : Uuid) (message : Str.t) (timestamp_ns : N) : t :=
  with_ttl 5000000000 (new drawn NotificationLevel.Info NotificationType.Toast message timestamp_ns).
(* services_notification/src/lib.rs:199-207 Notification::success *)
Definition success (drawn : Uuid) (message : Str.t) (timestamp_ns : N) : t :=
  with_ttl 3000000000 (new drawn NotificationLevel.Success NotificationType.Toast message timestamp_ns).
(* services_notification/src/lib.rs:210-218 Notification::warning *)
Definition warning (drawn : Uuid) (message : Str.t) (timestamp_ns : N) : t :=
  with_ttl 7000000000 (new drawn NotificationLevel.Warning NotificationType.Toast message timestamp_ns).
(* services_notification/src/lib.rs:221-229 Notification::error *)
Definition error (drawn : Uuid) (message : Str.t) (timestamp_ns : N) : t :=
  with_ttl 10000000000 (new drawn NotificationLevel.Error NotificationType.Toast message timestamp_ns).
(* services_notification/src/lib.rs:232-239 Notification::status *)
Definition status (drawn : Uuid) (message : Str.t) (timestamp_ns : N) : t :=
  new drawn NotificationLevel.Info NotificationType.Status message timestamp_ns.
(* services_notification/src/lib.rs:254-261 Notification::is_expired *)
Definition is_expired (current_time_ns : N) (n : t) : bool :=
  if ttl_ns n =? 0 then false else saturating_add (timestamp_ns n) (ttl_ns n) <=? current_time_ns.
(* services_notification/src/lib.rs:264-266 Notification::dismiss *)
Definition dismiss (n : t) : t := n <| dismissed := true |>.
End Notification.

Module NotificationService.
(* services_notification/src/lib.rs:77-77 MAX_NOTIFICATION_HISTORY *)
Definition MAX_NOTIFICATION_HISTORY : nat := 100.
(* services_notification/src/lib.rs:270-277 NotificationService *)
Record t := mk { notifications : list Notification.t; status : Str.t; current_time_ns : N }.
#[global] Instance rebuild_t : Rebuild t := λ s, mk (notifications s) (status s) (current_time_ns s).
(* services_notification/src/lib.rs:281-287 NotificationService::new *)
Definition new : t := mk [] (Str.of_string "Ready") 0.
(* services_notification/src/lib.rs:374-379 NotificationService::expire_old_notifications *)
Definition expire_old_notifications (s : t) : t :=
  s <| notifications ::= filter (λ n, bool_decide (Notification.notification_type n = NotificationType.Status)
        || negb (Notification.is_expired (current_time_ns s) n) = true) |>.
(* services_notification/src/lib.rs:290-293 NotificationService::advance_time *)
Definition advance_time (delta_ns : N) (s : t) : outcome t :=
  now ← add_u64 (current_time_ns s) delta_ns;
  Return (expire_old_notifications (s <| current_time_ns := now |>)).
(* services_notification/src/lib.rs:296-299 NotificationService::set_time *)
Definition set_time (time_ns : N) (s : t) : t := expire_old_notifications (s <| current_time_ns := time_ns |>).
(** The loop pops from the front while there are too many. *)
(* services_notification/src/lib.rs:307-314 NotificationService::notify *)
Definition notify (n : Notification.t) (s : t) : t :=
  s <| notifications ::= λ l, let l := l ++ [n] in drop (length l - MAX_NOTIFICATION_HISTORY) l |>.
(* services_notification/src/lib.rs:317-319 NotificationService::set_status *)
Definition set_status (text : Str.t) (s : t) : t := s <| status := text |>.
(* services_notification/src/lib.rs:327-336 NotificationService::get_active_toasts *)
Definition get_active_toasts (s : t) : list Notification.t :=
  filter (λ n, bool_decide (Notification.notification_type n = NotificationType.Toast)
               && negb (Notification.dismissed n)
               && negb (Notification.is_expired (current_time_ns s) n) = true) (notifications s).
(* services_notification/src/lib.rs:339-341 NotificationService::get_recent_notifications *)
Definition get_recent_notifications (limit : nat) (s : t) : list Notification.t :=
  take limit (reverse (notifications s)).
(* services_notification/src/lib.rs:344-349 NotificationService::get_notifications_by_level *)
Definition get_notifications_by_level (level : NotificationLevel.t) (s : t) : list Notification.t :=
  filter (λ n, Notification.level n = level) (notifications s).
(* services_notification/src/lib.rs:352-359 NotificationService::dismiss_notification *)
Definition dismiss_notification (id : NotificationId.t) (s : t) : bool * t :=
  match list_find (λ n, Notification.id n = id) (notifications s) with
  | Some (i, n) => (true, s <| notifications ::= <[i := Notification.dismiss n]> |>)
  | None => (false, s)
  end.
(* services_notification/src/lib.rs:362-366 NotificationService::dismiss_all *)
Definition dismiss_all (s : t) : t := s <| notifications ::= fmap Notification.dismiss |>.
(* services_notification/src/lib.rs:369-371 NotificationService::clear_all *)
Definition clear_all (s : t) : t := s <| notifications := [] |>.
(* services_notification/src/lib.rs:382-384 NotificationService::notification_count *)
Definition notification_count (s : t) : N := len (notifications s).
End NotificationService.

(** ** Theorems *)

Module SettingsSpec.
Import SettingsRegistry.

Lemma override_entry_spec p res k v :
  NoDup res.*1 →
  NoDup (override_entry p res (k, v)).*1 ∧
  ∀ k' v', (k', v') ∈ override_entry p res (k, v) ↔
    if decide (SettingKey.starts_with p k = true ∧ k' = k) then v' = v else (k', v') ∈ res.
Proof.
  intros Hnd. unfold override_entry. simpl. destruct (SettingKey.starts_with p k) eqn:Hp.
  2:{ split; [done|]. intros k' v'. rewrite decide_False; [done|]. by intros []. }
  destruct (list_find _ res) as [[i [k0 v0]]|] eqn:E.
  - apply list_find_Some in E as (Hi & Hk0 & _). simpl in Hk0. subst k0.
    assert ((<[i := (k, v)]> res).*1 = res.*1) as Hfst.
    { rewrite list_fmap_insert. apply list_insert_id. by rewrite list_lookup_fmap, Hi. }
    split; [by rewrite Hfst|]. intros k' v'. rewrite list_elem_of_lookup. split.
    + intros (j & Hj). destruct (decide (j = i)) as [->|Hne].
      * rewrite list_lookup_insert_eq in Hj by (by eapply lookup_lt_Some). injection Hj as <- <-.
        by rewrite decide_True.
      * rewrite list_lookup_insert_ne in Hj by done. rewrite decide_False; [by eapply list_elem_of_lookup_2|].
        intros [_ ->]. apply Hne. eapply (NoDup_lookup _ _ _ k); [exact Hnd|..]; rewrite list_lookup_fmap.
        -- by rewrite Hj.
        -- by rewrite Hi.
    + case_decide as Hd.
      * destruct Hd as [_ ->]. intros ->. exists i. by rewrite list_lookup_insert_eq by (by eapply lookup_lt_Some).
      * intros (j & Hj)%list_elem_of_lookup. exists j. rewrite list_lookup_insert_ne; [done|].
        intros <-. rewrite Hi in Hj. injection Hj as <- <-. naive_solver.
  - apply list_find_None in E. assert (k ∉ res.*1) as Hk.
    { intros ([k0 v0] & -> & Hin)%list_elem_of_fmap. rewrite Forall_forall in E. by apply (E _ Hin). }
    split.
    + rewrite fmap_app. apply NoDup_app. split; [done|]. split; [|by apply NoDup_singleton].
      intros x Hx [=->]%list_elem_of_singleton. done.
    + intros k' v'. rewrite elem_of_app, list_elem_of_singleton. case_decide as Hd.
      * destruct Hd as [_ ->]. split; [|by intros ->; right]. intros [Hin|[= ->]]; [|done].
        destruct Hk. apply list_elem_of_fmap. by exists (k, v').
      * naive_solver.
Qed.

Lemma override_entries_spec p l res :
  NoDup l.*1 → NoDup res.*1 →
  NoDup (foldl (override_entry p) res l).*1 ∧
  ∀ k v, (k, v) ∈ foldl (override_entry p) res l ↔
    if decide (SettingKey.starts_with p k = true ∧ k ∈ l.*1) then (k, v) ∈ l else (k, v) ∈ res.
Proof.
  revert res. induction l as [|[k0 v0] l IH]; intros res Hl Hres; simpl.
  { split; [done|]. intros k v. rewrite decide_False; [done|]. intros [_ []%elem_of_nil]. }
  simpl in Hl. apply NoDup_cons in Hl as [Hk0 Hl]. destruct (override_entry_spec p res k0 v0 Hres) as [Hn Hin].
  destruct (IH _ Hl Hn) as [Hn' Hin']. split; [done|]. intros k v. rewrite Hin'.
  assert (∀ w, (k0, w) ∉ l) as Hno.
  { intros w Hw. apply Hk0, list_elem_of_fmap. by exists (k0, w). }
  specialize (Hin k v). pose proof (elem_of_cons (l.*1) k k0) as E1. pose proof (elem_of_cons l (k, v) (k0, v0)) as E2.
  assert (k = k0 → k ∉ l.*1 ∧ (k, v) ∉ l) as Hk by (intros ->; auto).
  destruct (decide (k = k0)) as [->|Hne]; repeat case_decide; naive_solver.
Qed.

(** The settings listed for a user under a prefix are exactly the keys with that prefix that
    have an effective value, each once and with the value that [get] returns: an override hides
    the default, and keys that only the user has set are listed too. *)
Theorem listed_settings_are_effective user prefix r :
  NoDup (list_with_prefix user prefix r).*1 ∧
  ∀ k v, (k, v) ∈ list_with_prefix user prefix r ↔
    SettingKey.starts_with prefix k = true ∧ get user k r = Some v.
Proof.
  unfold list_with_prefix, get.
  set (res := filter _ (iter (defaults r))).
  assert (NoDup res.*1) as Hres.
  { eapply sublist_NoDup; [|apply fmap_sublist, sublist_filter]. unfold iter. rewrite btree_iter_perm.
    apply NoDup_fst_map_to_list. }
  assert (∀ k v, (k, v) ∈ res ↔ SettingKey.starts_with prefix k = true ∧ defaults r !! k = Some v) as Hin.
  { intros k v. unfold res, iter. by rewrite list_elem_of_filter, elem_of_btree_iter. }
  destruct (user_overrides r !! user) as [settings|]; [|done].
  destruct (override_entries_spec prefix (iter settings) res) as [Hn Hi]; [|done|].
  { unfold iter. rewrite btree_iter_perm. apply NoDup_fst_map_to_list. }
  split; [done|]. intros k v. rewrite Hi. specialize (Hin k v).
  assert (k ∈ (iter settings).*1 ↔ is_Some (settings !! k)) as Hk.
  { unfold iter. rewrite btree_iter_perm, list_elem_of_fmap. split.
    - intros ([k' v'] & -> & H%elem_of_map_to_list). by exists v'.
    - intros [v' H]. exists (k, v'). by rewrite elem_of_map_to_list. }
  pose proof (elem_of_btree_iter SettingKey.leb settings k v) as Hs. unfold iter in *. case_decide as Hd.
  - destruct Hd as [Hp [v' Hv']%Hk]. rewrite Hv' in *. naive_solver.
  - destruct (settings !! k) as [v'|] eqn:E; [|done]. naive_solver.
Qed.

(** Each operation changes the effective settings of one user only, in one way: setting an
    override makes it the value, removing it brings the default back and reports whether there
    was one, clearing brings all defaults back, applying a set of overrides changes exactly its
    keys, and a new default is seen by the users who have not overridden it. *)
Theorem settings_operations_act_on_one_user user user' k k' v overrides r :
  get user k (set_user_override user' k' v r) =
    (if decide (user = user' ∧ k = k') then Some v else get user k r) ∧
  (let '(found, r') := remove_user_override user' k' r in
   found = bool_decide (is_Some (get_user_override user' k' r)) ∧
   get user k r' = if decide (user = user' ∧ k = k') then get_default k r else get user k r) ∧
  get user k (clear_user_overrides user' r) = (if decide (user = user') then get_default k r else get user k r) ∧
  get user k (apply_user_overrides user' overrides r) =
    (if decide (user = user') then match overrides !! k with Some w => Some w | None => get user k r end
     else get user k r) ∧
  get user k (register_default k' v r) =
    (if decide (k = k' ∧ get_user_override user k r = None) then Some v else get user k r).
Proof.
  destruct r as [d o]. unfold get, get_default, get_user_override, set_user_override, remove_user_override,
    clear_user_overrides, apply_user_overrides, register_default, overrides_of. simpl.
  split_and!.
  - destruct (decide (user = user')) as [->|Hu].
    + rewrite lookup_insert_eq. destruct (decide (k = k')) as [->|Hk].
      * by rewrite lookup_insert_eq, decide_True.
      * rewrite lookup_insert_ne by done. rewrite decide_False by naive_solver.
        by destruct (o !! user').
    + rewrite lookup_insert_ne by done. by rewrite decide_False by naive_solver.
  - destruct (o !! user') as [m|] eqn:E; simpl.
    + split; [done|]. destruct (decide (user = user')) as [->|Hu].
      * rewrite lookup_insert_eq. destruct (decide (k = k')) as [->|Hk].
        -- by rewrite lookup_delete_eq, decide_True.
        -- rewrite lookup_delete_ne by done. rewrite decide_False by naive_solver. by rewrite E.
      * rewrite lookup_insert_ne by done. by rewrite decide_False by naive_solver.
    + split; [done|].
      case_decide as Hd; [|done]. destruct Hd as [-> _]. by rewrite E.
  - case_decide as Hu; [subst; by rewrite lookup_delete_eq|by rewrite lookup_delete_ne].
  - case_decide as Hu; [|by rewrite lookup_insert_ne]. subst. rewrite lookup_insert_eq, lookup_union.
    destruct (overrides !! k), (o !! user') as [m|]; simpl; try done; by destruct (m !! k).
  - case_decide as Hd; destruct (o !! user) as [m|] eqn:E; simpl in *.
    + destruct Hd as [-> ->]. by rewrite lookup_insert_eq.
    + destruct Hd as [-> _]. by rewrite lookup_insert_eq.
    + destruct (m !! k) eqn:Em; [done|]. rewrite lookup_insert_ne; [done|]. naive_solver.
    + rewrite lookup_insert_ne; [done|]. naive_solver.
Qed.
End SettingsSpec.

Module PersistenceSpec.
Section persistence.
Context `{SettingsJson}.
Import SettingsOverridesData.

Lemma from_settings_lookup m k : from_settings m !! SettingKey.as_str k = m !! k.
Proof.
  assert (Inj (=) (=) SettingKey.as_str) as Hinj by (intros [] []; simpl; congruence).
  etrans; [exact (insert_entries_map SettingKey.as_str (λ v, v) Hinj _ m k (btree_iter_perm _ m))|].
  by destruct (m !! k).
Qed.
Lemma to_settings_lookup m k : to_settings m !! SettingKey.new k = m !! k.
Proof.
  assert (Inj (=) (=) SettingKey.new) as Hinj by (intros ?? [= ->]; done).
  etrans; [exact (insert_entries_map SettingKey.new (λ v, v) Hinj _ m k (btree_iter_perm _ m))|].
  by destruct (m !! k).
Qed.
Lemma from_overrides_lookup o u : user_overrides (from_overrides o) !! u = from_settings <$> o !! u.
Proof. unfold from_overrides. simpl. exact (insert_entries_map (λ u : Str.t, u) from_settings (λ x y E, E) _ o u (btree_iter_perm _ o)). Qed.

Lemma to_from_overrides o : to_overrides (from_overrides o) = o.
Proof.
  apply map_eq. intros u. unfold to_overrides.
  etrans; [exact (insert_entries_map (λ u : Str.t, u) to_settings (λ x y E, E) _ _ u (btree_iter_perm _ _))|].
  rewrite from_overrides_lookup.
  destruct (o !! u) as [m|]; [|done]. simpl. f_equal. apply map_eq. intros [k].
  rewrite to_settings_lookup. apply (from_settings_lookup m (SettingKey.new k)).
Qed.

(** Overrides that are saved load back exactly, for every user: a registry that imports what
    another one has saved gives every user the same effective settings over the same defaults.
    Only infinite numbers, which JSON cannot write, are excluded. *)
Theorem saved_settings_load_back `{!LawfulSettingsJson} r r' :
  map_Forall (λ _, map_Forall (λ _ v, SettingValue.finite v = true)) (SettingsRegistry.user_overrides r) →
  SettingsRegistry.defaults r' = SettingsRegistry.defaults r →
  ∃ bytes, serialize_overrides (from_overrides (SettingsRegistry.export_overrides r)) = Ok bytes ∧
    deserialize_overrides bytes = Ok (from_overrides (SettingsRegistry.export_overrides r)) ∧
    let restored := SettingsRegistry.import_overrides (to_overrides (load_overrides_safe bytes)) r' in
    ∀ user k, SettingsRegistry.get user k restored = SettingsRegistry.get user k r.
Proof.
  intros Hfin Hd. destruct (from_slice_to_vec (from_overrides (SettingsRegistry.export_overrides r)))
    as (bytes & Hto & Hfrom).
  { intros u m Hm. rewrite from_overrides_lookup in Hm. apply fmap_Some in Hm as (m' & Hm' & ->).
    intros k v Hv. specialize (Hfin u m' Hm').
    apply (Hfin (SettingKey.new k)). rewrite <-from_settings_lookup. exact Hv. }
  exists bytes. unfold serialize_overrides, load_overrides_safe, deserialize_overrides. rewrite Hto, Hfrom. simpl.
  split; [done|]. split; [done|]. intros user k. rewrite to_from_overrides. unfold SettingsRegistry.get. simpl.
  by rewrite Hd.
Qed.

(** Bytes of another version or that are no document at all load as no overrides. *)
Lemma unreadable_settings_load_empty bytes :
  is_err (deserialize_overrides bytes) = true → to_overrides (load_overrides_safe bytes) = ∅.
Proof. unfold load_overrides_safe. by destruct (deserialize_overrides bytes). Qed.
End persistence.
End PersistenceSpec.

Module SettingsExample.
#[local] Instance value_countable : Countable SettingValue.t.
Proof.
  apply (inj_countable'
    (λ v, match v with
          | SettingValue.Boolean b => inl b
          | SettingValue.Integer i => inr (inl i)
          | SettingValue.Float f => inr (inr (inl f))
          | SettingValue.String s => inr (inr (inr (inl s)))
          | SettingValue.StringList l => inr (inr (inr (inr l)))
          end)
    (λ x, match x with
          | inl b => SettingValue.Boolean b
          | inr (inl i) => SettingValue.Integer i
          | inr (inr (inl f)) => SettingValue.Float f
          | inr (inr (inr (inl s))) => SettingValue.String s
          | inr (inr (inr (inr l))) => SettingValue.StringList l
          end)). by intros [].
Defined.
(** A serialisation: the document as one number. *)
#[local] Instance json : SettingsJson := {|
  to_vec_pretty d := Ok [SettingsOverridesData.version d; Npos (encode (SettingsOverridesData.user_overrides d))];
  from_slice bytes :=
    match bytes with
    | [v; Npos p] => match decode p with Some o => Ok (SettingsOverridesData.mk v o) | None => Err [] end
    | _ => Err []
    end
|}.
#[local] Instance json_lawful : LawfulSettingsJson.
Proof. intros [v o] _. eexists. split; [done|]. simpl. by rewrite decode_encode. Qed.
Definition user : UserId := Str.of_string "ada".
Definition registry : SettingsRegistry.t :=
  SettingsRegistry.set_user_override user Keys.EDITOR_TAB_SIZE (SettingValue.Integer 8) create_default_registry.
Lemma saved_settings_load_back_witness :
  ∃ bytes, serialize_overrides (SettingsOverridesData.from_overrides (SettingsRegistry.export_overrides registry)) = Ok bytes ∧
    SettingsRegistry.get user Keys.EDITOR_TAB_SIZE
      (SettingsRegistry.import_overrides (SettingsOverridesData.to_overrides (load_overrides_safe bytes))
         create_default_registry) = Some (SettingValue.Integer 8).
Proof.
  destruct (PersistenceSpec.saved_settings_load_back registry create_default_registry) as (bytes & E & _ & Hget).
  - apply (bool_decide_unpack _). vm_compute. exact I.
  - reflexivity.
  - exists bytes. split; [exact E|]. rewrite Hget. vm_compute. reflexivity.
Defined.
End SettingsExample.

Module NotificationSpec.
Import NotificationService.

(** The calls that change the service. *)
Inductive op :=
| Notify (n : Notification.t)
| AdvanceTime (delta_ns : N)
| SetTime (time_ns : N)
| SetStatus (text : Str.t)
| Dismiss (id : NotificationId.t)
| DismissAll
| ClearAll.
Definition step (o : op) (s : t) : outcome t :=
  match o with
  | Notify n => Return (notify n s)
  | AdvanceTime d => advance_time d s
  | SetTime now => Return (set_time now s)
  | SetStatus text => Return (set_status text s)
  | Dismiss id => Return (dismiss_notification id s).2
  | DismissAll => Return (dismiss_all s)
  | ClearAll => Return (clear_all s)
  end.
(** A history, with the states it passes through. *)
Inductive run : t → list op → list t → t → Prop :=
| run_nil s : run s [] [] s
| run_cons o l s s1 trace s2 : step o s = Return s1 → run s1 l trace s2 → run s (o :: l) (s1 :: trace) s2.

Open Scope nat_scope.
(** Calls that do not end the notification. *)
Definition spares (n : Notification.t) (o : op) : bool :=
  match o with
  | Dismiss id => bool_decide (id ≠ Notification.id n)
  | DismissAll | ClearAll => false
  | _ => true
  end.
Definition is_notify (o : op) : bool := match o with Notify _ => true | _ => false end.
(** How many notifications a history adds. *)
Definition added (l : list op) : nat := length (filter (λ o, is_notify o = true) l).

(** The notification is held with at most [newer] younger ones behind it. *)
Definition held (n : Notification.t) (newer : nat) (s : t) : Prop :=
  ∃ l1 l2, notifications s = l1 ++ n :: l2 ∧ length l2 ≤ newer.

Lemma held_expire n newer s :
  Notification.is_expired (current_time_ns s) n = false → held n newer s → held n newer (expire_old_notifications s).
Proof.
  intros He (l1 & l2 & E & Hl). unfold held, expire_old_notifications. simpl. rewrite E, filter_app, filter_cons.
  rewrite decide_True by (rewrite He; by rewrite orb_true_r). eexists _, _. split; [done|].
  etrans; [|exact Hl]. apply length_filter.
Qed.

Lemma held_step n newer o s s' :
  spares n o = true → step o s = Return s' → Notification.is_expired (current_time_ns s') n = false →
  newer + (if is_notify o then 1 else 0) < MAX_NOTIFICATION_HISTORY →
  held n newer s → held n (newer + if is_notify o then 1 else 0) s'.
Proof.
  intros Hs Hstep He Hmax Hh. destruct o as [m|d|now|text|id| |]; simpl in *; try done.
  - injection Hstep as <-. destruct Hh as (l1 & l2 & E & Hl). unfold held, notify. simpl. rewrite E.
    rewrite <-app_assoc. simpl. set (d := _ - _).
    assert (d ≤ length l1) as Hd by (unfold d; rewrite !length_app; simpl; rewrite length_app; simpl; lia).
    exists (drop d l1), (l2 ++ [m]). rewrite drop_app_le by done. split; [done|]. rewrite length_app. simpl. lia.
  - apply bind_Return in Hstep as (now & _ & [= <-]). rewrite Nat.add_0_r. apply held_expire; [exact He|done].
  - injection Hstep as <-. rewrite Nat.add_0_r. apply held_expire; [exact He|done].
  - injection Hstep as <-. by rewrite Nat.add_0_r.
  - injection Hstep as <-. rewrite Nat.add_0_r. apply bool_decide_eq_true in Hs.
    unfold dismiss_notification. destruct (list_find _ _) as [[i m]|] eqn:Ef; [|done]. simpl.
    apply list_find_Some in Ef as (Hi & Hid & _). destruct Hh as (l1 & l2 & E & Hl). unfold held. simpl.
    rewrite E in Hi |- *. destruct (decide (i < length l1)) as [Hlt|Hge].
    + rewrite insert_app_l by done. by exists (<[i := Notification.dismiss m]> l1), l2.
    + apply not_lt in Hge. rewrite insert_app_r_alt by lia. destruct (i - length l1) as [|j] eqn:Ej.
      * rewrite lookup_app_r, Ej in Hi by lia. injection Hi as <-. done.
      * simpl. exists l1, (<[j := Notification.dismiss m]> l2). by rewrite length_insert.
Qed.

Lemma held_run n l trace : ∀ newer s s',
  run s l trace s' → forallb (spares n) l = true →
  Forall (λ s, Notification.is_expired (current_time_ns s) n = false) trace →
  newer + added l < MAX_NOTIFICATION_HISTORY → held n newer s → held n (newer + added l) s'.
Proof.
  induction l as [|o l IH] in trace |- *; intros newer s s' Hrun Hs He Hmax Hh.
  - inversion Hrun; subst. by rewrite Nat.add_0_r.
  - inversion Hrun as [|o' l' s0 s1 tr s2 Hstep Hrun']; subst. simpl in Hs. apply andb_true_iff in Hs as [Hs1 Hs2].
    apply Forall_cons in He as [He1 He2].
    assert (added (o :: l) = (if is_notify o then 1 else 0) + added l) as Ea.
    { unfold added. rewrite filter_cons. by destruct (is_notify o). }
    rewrite Ea in *. rewrite Nat.add_assoc. eapply IH; [done..|lia|]. eapply held_step; try done. lia.
Qed.

(** A toast that has been posted is shown until it ends: while the time stays below its end,
    nobody dismisses it or clears the list, and fewer than one hundred notifications follow, it is
    among the active toasts after every history of calls. *)
Theorem toast_is_shown_until_it_ends n s l trace s' :
  Notification.notification_type n = NotificationType.Toast → Notification.dismissed n = false →
  run (notify n s) l trace s' → forallb (spares n) l = true →
  Forall (λ s, Notification.is_expired (current_time_ns s) n = false) (s :: trace) →
  added l < MAX_NOTIFICATION_HISTORY →
  n ∈ get_active_toasts s'.
Proof.
  intros Ht Hd Hrun Hs He Hmax. apply Forall_cons in He as [He0 He].
  assert (held n 0 (notify n s)) as Hh.
  { unfold held, notify. simpl. set (d := _ - _).
    assert (d ≤ length (notifications s)) as Hdle by (unfold d; rewrite length_app; unfold MAX_NOTIFICATION_HISTORY; simpl; lia).
    exists (drop d (notifications s)), []. rewrite drop_app_le by done. done. }
  destruct (held_run n l trace 0 _ _ Hrun Hs He Hmax Hh) as (l1 & l2 & E & _).
  assert (Notification.is_expired (current_time_ns s') n = false) as Hlast.
  { clear -He He0 Hrun. remember (notify n s) as s0 eqn:E0.
    assert (Notification.is_expired (current_time_ns s0) n = false) as H0 by (by subst). clear E0 He0.
    induction Hrun; [done|]. apply Forall_cons in He as [? ?]. auto. }
  unfold get_active_toasts. apply list_elem_of_filter. rewrite Ht, Hd, Hlast, E. split; [done|].
  apply elem_of_app. right. by left.
Qed.

Lemma notifications_bounded_step o s s' :
  step o s = Return s' → length (notifications s) ≤ MAX_NOTIFICATION_HISTORY →
  length (notifications s') ≤ MAX_NOTIFICATION_HISTORY.
Proof.
  assert (∀ s0, length (notifications (expire_old_notifications s0)) ≤ length (notifications s0)) as Hexp.
  { intros s0. unfold expire_old_notifications. simpl. apply length_filter. }
  intros Hstep Hl. destruct o; simpl in Hstep.
  - injection Hstep as <-. unfold notify. simpl. rewrite length_drop, length_app. simpl. lia.
  - apply bind_Return in Hstep as (now & _ & [= <-]). etrans; [apply Hexp|done].
  - injection Hstep as <-. etrans; [apply Hexp|done].
  - by injection Hstep as <-.
  - injection Hstep as <-. unfold dismiss_notification. destruct (list_find _ _) as [[i m]|]; [|done].
    simpl. by rewrite length_insert.
  - injection Hstep as <-. unfold dismiss_all. simpl. by rewrite length_fmap.
  - injection Hstep as <-. simpl. lia.
Qed.

(** The service never holds more than one hundred notifications, whatever is posted. *)
Theorem notification_history_is_bounded l trace s :
  run new l trace s → (notification_count s ≤ 100)%N.
Proof.
  assert (∀ s0, length (notifications s0) ≤ MAX_NOTIFICATION_HISTORY → run s0 l trace s →
    length (notifications s) ≤ MAX_NOTIFICATION_HISTORY) as Hrun.
  { induction l as [|o l IH] in trace |- *; intros s0 H0 Hr; inversion Hr; subst; [done|].
    eapply IH; [|done]. by eapply notifications_bounded_step. }
  intros H. specialize (Hrun new ltac:(simpl; lia) H). unfold notification_count, len, MAX_NOTIFICATION_HISTORY in *. lia.
Qed.

Definition sample : Notification.t := Notification.info 7%N (Str.of_string "saved") 0%N.
Lemma toast_is_shown_until_it_ends_witness :
  ∃ s', sample ∈ get_active_toasts s' ∧ current_time_ns s' = 4000000000%N.
Proof.
  eexists. split.
  - eapply (toast_is_shown_until_it_ends sample new
      [AdvanceTime 4000000000%N; Notify (Notification.error 8%N (Str.of_string "full") 1%N);
       Dismiss (NotificationId.from_uuid 8%N)]).
    + reflexivity.
    + reflexivity.
    + econstructor; [vm_compute; reflexivity|]. econstructor; [vm_compute; reflexivity|].
      econstructor; [vm_compute; reflexivity|]. constructor.
    + vm_compute. reflexivity.
    + repeat constructor.
    + vm_compute. lia.
  - vm_compute. reflexivity.
Defined.
End NotificationSpec.
