(* ===== verification/Palette.v ===== *)
(** * Command palette and key bindings

    [services_command_palette/src/lib.rs]: descriptors, search and execution of registered
    commands; [services_workspace_manager/src/keybindings.rs]: key combinations, profiles and
    the manager.  A handler ([Fn(&[String])]) is a function; [serde_json] is an interface. *)

From S2P Require Import Prelude Editor Input Text.
Open Scope string_scope.
Open Scope list_scope.
Open Scope N_scope.

(** [+=] on a [u32]. *)
Definition add_u32 (a b : N) : outcome N := if a + b <=? 0xFFFFFFFF then Return (a + b) else Panic.
Lemma add_u32_Return a b c : add_u32 a b = Return c ↔ c = a + b ∧ a + b ≤ 0xFFFFFFFF.
Proof. unfold add_u32. destruct (N.leb_spec (a + b) 0xFFFFFFFF); naive_solver lia. Qed.

(** ** The palette *)

Module CommandId.
(* services_command_palette/src/lib.rs:53-66 CommandId *)
Record t := new { as_str : Str.t }.
#[global] Instance eq_dec : EqDecision t.
Proof. solve_decision. Defined.
End CommandId.

Module CommandDescriptor.
(* services_command_palette/src/lib.rs:75-102 CommandDescriptor *)
Record t := mk {
  id : CommandId.t;
  name : Str.t;
  description : Str.t;
  tags : list Str.t;
  required_capability : option Str.t;
  enabled : bool;
  category : option Str.t;
  keybinding : option Str.t;
  requires_args : bool;
  prompt_pattern : option Str.t
}.
#[global] Instance rebuild_t : Rebuild t := λ d,
  mk (id d) (name d) (description d) (tags d) (required_capability d) (enabled d) (category d) (keybinding d)
     (requires_args d) (prompt_pattern d).
#[global] Instance eq_dec : EqDecision t.
Proof. solve_decision. Defined.
(* services_command_palette/src/lib.rs:106-124 CommandDescriptor::new *)
Definition new (id name description : Str.t) (tags : list Str.t) : t :=
  mk (CommandId.new id) name description tags None true None None false None.
(* services_command_palette/src/lib.rs:127-130 CommandDescriptor::with_capability *)
Definition with_capability (cap_id : Str.t) (d : t) : t := d <| required_capability := Some cap_id |>.
(* services_command_palette/src/lib.rs:133-136 CommandDescriptor::disabled *)
Definition disabled (d : t) : t := d <| enabled := false |>.
(* services_command_palette/src/lib.rs:139-142 CommandDescriptor::with_category *)
Definition with_category (c : Str.t) (d : t) : t := d <| category := Some c |>.
(* services_command_palette/src/lib.rs:145-148 CommandDescriptor::with_keybinding *)
Definition with_keybinding (k : Str.t) (d : t) : t := d <| keybinding := Some k |>.
(* services_command_palette/src/lib.rs:151-154 CommandDescriptor::requires_args *)
Definition with_required_args (d : t) : t := d <| requires_args := true |>.
(* services_command_palette/src/lib.rs:157-160 CommandDescriptor::with_prompt_pattern *)
Definition with_prompt_pattern (p : Str.t) (d : t) : t := d <| prompt_pattern := Some p |>.
(* services_command_palette/src/lib.rs:166-189 CommandDescriptor::format_for_palette *)
Definition format_for_palette (d : t) : Str.t :=
  let result := name d in
  let result :=
    match category d with
    | Some cat => result ++ Str.of_string " (" ++ cat ++ Str.of_string ")"
    | None => result
    end in
  match keybinding d with
  | Some key =>
      let padding := if (Str.len result <? 35)%nat then (35 - Str.len result)%nat else 1%nat in
      result ++ replicate padding 32 ++ key
  | None => result
  end.
Section search.
Context `{Lowercase}.
(* services_command_palette/src/lib.rs:192-222 CommandDescriptor::matches *)
Definition matches (query : Str.t) (d : t) : bool :=
  if negb (enabled d) then false
  else
    let query_lower := to_lowercase query in
    contains query_lower (to_lowercase (name d))
    || contains query_lower (to_lowercase (description d))
    || existsb (λ tag, contains query_lower (to_lowercase tag)) (tags d)
    || contains query_lower (to_lowercase (CommandId.as_str (id d))).
(** Points for a text that is, starts with or contains the query. *)
(* services_command_palette/src/lib.rs:238-244 CommandDescriptor::relevance_score (text) *)
Definition points (query_lower text_lower : Str.t) (exact prefix part : N) : N :=
  if decide (text_lower = query_lower) then exact
  else if Str.starts_with query_lower text_lower then prefix
  else if contains query_lower text_lower then part
  else 0.
(* services_command_palette/src/lib.rs:226-264 CommandDescriptor::relevance_score *)
Definition relevance_score (query : Str.t) (d : t) : outcome N :=
  if negb (enabled d) then Return 0
  else
    let query_lower := to_lowercase query in
    let name_lower := to_lowercase (name d) in
    let desc_lower := to_lowercase (description d) in
    score ← add_u32 0 (points query_lower name_lower 10000 5000 1000);
    score ← fold_outcome (λ score tag, add_u32 score (points query_lower (to_lowercase tag) 3000 1500 500))
              (tags d) score;
    add_u32 score (if contains query_lower desc_lower then 100 else 0).
End search.
End CommandDescriptor.

(** [Result<String, String>] and the boxed handlers. *)
Notation CommandHandler := (list Str.t → result Str.t Str.t).

Module RegisteredCommand.
(* services_command_palette/src/lib.rs:274-277 RegisteredCommand *)
Record t := mk { descriptor : CommandDescriptor.t; handler : CommandHandler }.
End RegisteredCommand.

Module CommandPalette.
(* services_command_palette/src/lib.rs:280-282 CommandPalette *)
Record t := mk { commands : list RegisteredCommand.t }.
#[global] Instance rebuild_t : Rebuild t := λ p, mk (commands p).
(* services_command_palette/src/lib.rs:286-290 CommandPalette::new *)
Definition new : t := mk [].
(* services_command_palette/src/lib.rs:293-298 CommandPalette::register_command *)
Definition register_command (d : CommandDescriptor.t) (h : CommandHandler) (p : t) : t :=
  p <| commands ::= λ l, l ++ [RegisteredCommand.mk d h] |>.
(** The first command of an identifier. *)
Definition lookup (id : CommandId.t) (p : t) : option (nat * RegisteredCommand.t) :=
  list_find (λ c, CommandDescriptor.id (RegisteredCommand.descriptor c) = id) (commands p).
(* services_command_palette/src/lib.rs:301-312 CommandPalette::unregister_command *)
Definition unregister_command (id : CommandId.t) (p : t) : bool * t :=
  match lookup id p with
  | Some (pos, _) => (true, p <| commands ::= delete pos |>)
  | None => (false, p)
  end.
(* services_command_palette/src/lib.rs:315-320 CommandPalette::list_commands *)
Definition list_commands (p : t) : list CommandDescriptor.t := RegisteredCommand.descriptor <$> commands p.
(** The comparison: score descending, then name ascending. *)
(* services_command_palette/src/lib.rs:336-339 CommandPalette::filter_commands (order) *)
Definition score_leb (a b : N * CommandDescriptor.t) : bool :=
  (b.1 <? a.1) || (b.1 =? a.1) && Utf8.leb (CommandDescriptor.name a.2) (CommandDescriptor.name b.2).
Section search.
Context `{Lowercase}.
(** [map] with a closure that can panic. *)
Fixpoint score_all (query : Str.t) (l : list CommandDescriptor.t) : outcome (list (N * CommandDescriptor.t)) :=
  match l with
  | [] => Return []
  | d :: l => score ← CommandDescriptor.relevance_score query d; rest ← score_all query l; Return ((score, d) :: rest)
  end.
(* services_command_palette/src/lib.rs:324-342 CommandPalette::filter_commands *)
Definition filter_commands (query : Str.t) (p : t) : outcome (list CommandDescriptor.t) :=
  scored ← score_all query (filter (λ d, CommandDescriptor.matches query d = true) (list_commands p));
  Return (stable_sort score_leb scored).*2.
End search.
(* services_command_palette/src/lib.rs:345-354 CommandPalette::execute_command *)
Definition execute_command (id : CommandId.t) (args : list Str.t) (p : t) : result Str.t Str.t :=
  match lookup id p with
  | Some (_, cmd) =>
      if negb (CommandDescriptor.enabled (RegisteredCommand.descriptor cmd))
      then Err (Str.of_string "Command is disabled")
      else RegisteredCommand.handler cmd args
  | None => Err (Str.of_string "Command not found: " ++ CommandId.as_str id)
  end.
(* services_command_palette/src/lib.rs:357-362 CommandPalette::get_command *)
Definition get_command (id : CommandId.t) (p : t) : option CommandDescriptor.t :=
  (λ x, RegisteredCommand.descriptor x.2) <$> lookup id p.
End CommandPalette.

(** ** Key bindings *)

Module Action.
(* services_workspace_manager/src/keybindings.rs:21-37 Action *)
Inductive t := SwitchTile | FocusTop | FocusBottom | Save | Quit | CommandMode | Custom (name : Str.t).
#[global] Instance eq_dec : EqDecision t.
Proof. solve_decision. Defined.
(* services_workspace_manager/src/keybindings.rs:41-51 Action::name *)
Definition name (a : t) : Str.t :=
  match a with
  | SwitchTile => Str.of_string "switch_tile"
  | FocusTop => Str.of_string "focus_top"
  | FocusBottom => Str.of_string "focus_bottom"
  | Save => Str.of_string "save"
  | Quit => Str.of_string "quit"
  | CommandMode => Str.of_string "command_mode"
  | Custom n => n
  end.
(* services_workspace_manager/src/keybindings.rs:54-64 Action::from_name *)
Definition from_name `{Lowercase} (n : Str.t) : option t :=
  let lower := to_lowercase n in
  if decide (lower = Str.of_string "switch_tile") then Some SwitchTile
  else if decide (lower = Str.of_string "focus_top") then Some FocusTop
  else if decide (lower = Str.of_string "focus_bottom") then Some FocusBottom
  else if decide (lower = Str.of_string "save") then Some Save
  else if decide (lower = Str.of_string "quit") then Some Quit
  else if decide (lower = Str.of_string "command_mode") then Some CommandMode
  else Some (Custom n).
End Action.

Module KeyCombo.
(* services_workspace_manager/src/keybindings.rs:68-78 KeyCombo *)
Record t := new { code : KeyCode.t; modifiers : Modifiers.t }.
#[global] Instance eq_dec : EqDecision t.
Proof. solve_decision. Defined.
#[global] Instance countable : Countable t.
Proof.
  apply (inj_countable' (λ k, (code k, Modifiers.bits (modifiers k)))
           (λ x, new x.1 (Modifiers.from_bits x.2))). by intros [? []].
Defined.
(* services_workspace_manager/src/keybindings.rs:81-86 KeyCombo::from_event *)
Definition from_event (e : KeyEvent.t) : t := new (KeyEvent.code e) (KeyEvent.modifiers e).
(* services_workspace_manager/src/keybindings.rs:89-91 KeyCombo::matches *)
Definition matches (e : KeyEvent.t) (k : t) : bool :=
  bool_decide (code k = KeyEvent.code e) && bool_decide (modifiers k = KeyEvent.modifiers e).
End KeyCombo.

Module KeyBindingProfile.
(* services_workspace_manager/src/keybindings.rs:95-101 KeyBindingProfile *)
Record t := mk { name : Str.t; bindings : gmap KeyCombo.t Action.t }.
#[global] Instance rebuild_t : Rebuild t := λ p, mk (name p) (bindings p).
#[global] Instance eq_dec : EqDecision t.
Proof. solve_decision. Defined.
(* services_workspace_manager/src/keybindings.rs:147-152 KeyBindingProfile::new *)
Definition new (name : Str.t) : t := mk name ∅.
(* services_workspace_manager/src/keybindings.rs:155-157 KeyBindingProfile::bind *)
Definition bind (combo : KeyCombo.t) (action : Action.t) (p : t) : t := p <| bindings ::= <[combo := action]> |>.
(* services_workspace_manager/src/keybindings.rs:160-162 KeyBindingProfile::unbind *)
Definition unbind (combo : KeyCombo.t) (p : t) : option Action.t * t :=
  (bindings p !! combo, p <| bindings ::= delete combo |>).
(* services_workspace_manager/src/keybindings.rs:165-168 KeyBindingProfile::get_action *)
Definition get_action (e : KeyEvent.t) (p : t) : option Action.t := bindings p !! KeyCombo.from_event e.
(* services_workspace_manager/src/keybindings.rs:176-178 KeyBindingProfile::is_bound *)
Definition is_bound (combo : KeyCombo.t) (p : t) : bool := bool_decide (is_Some (bindings p !! combo)).
(* services_workspace_manager/src/keybindings.rs:181-183 KeyBindingProfile::clear *)
Definition clear (p : t) : t := p <| bindings := ∅ |>.
(* services_workspace_manager/src/keybindings.rs:186-188 KeyBindingProfile::binding_count *)
Definition binding_count (p : t) : nat := size (bindings p).
(* services_workspace_manager/src/keybindings.rs:191-227 KeyBindingProfile::default_profile *)
Definition default_profile : t :=
  let profile := new (Str.of_string "default") in
  let profile := bind (KeyCombo.new KeyCode.Tab Modifiers.ALT) Action.SwitchTile profile in
  let profile := bind (KeyCombo.new KeyCode.S Modifiers.CTRL) Action.Save profile in
  let profile := bind (KeyCombo.new KeyCode.Q Modifiers.CTRL) Action.Quit profile in
  let profile := bind (KeyCombo.new KeyCode.Num1 Modifiers.CTRL) Action.FocusTop profile in
  bind (KeyCombo.new KeyCode.Num2 Modifiers.CTRL) Action.FocusBottom profile.
(* services_workspace_manager/src/keybindings.rs:230-252 KeyBindingProfile::vim_profile *)
Definition vim_profile : t :=
  let profile := new (Str.of_string "vim") in
  let profile := bind (KeyCombo.new KeyCode.Tab Modifiers.CTRL) Action.SwitchTile profile in
  let profile := bind (KeyCombo.new KeyCode.S Modifiers.CTRL) Action.Save profile in
  let profile := bind (KeyCombo.new KeyCode.Q Modifiers.CTRL) Action.Quit profile in
  bind (KeyCombo.new KeyCode.Escape Modifiers.NONE) Action.CommandMode profile.
(** What is serialized: the name, and the bindings as a list of pairs. *)
(* services_workspace_manager/src/keybindings.rs:103-122 KeyBindingProfile::serialize *)
Definition serialize `{HashOrder} (p : t) : Str.t * list (KeyCombo.t * Action.t) := (name p, hm_iter (bindings p)).
(* services_workspace_manager/src/keybindings.rs:124-143 KeyBindingProfile::deserialize *)
Definition deserialize (helper : Str.t * list (KeyCombo.t * Action.t)) : t :=
  mk helper.1 (foldl (λ m '(k, v), <[k := v]> m) ∅ helper.2).
End KeyBindingProfile.

(** The part of a JSON document that the manager reads: the fields [active_profile] (when it is a
    string) and [profiles] (when it is an object), each profile parsed or the error of parsing it. *)
Module BindingsDocument.
Record t := mk {
  active_profile : option Str.t;
  profiles : option (list (Str.t * result (Str.t * list (KeyCombo.t * Action.t)) Str.t))
}.
End BindingsDocument.

(** [serde_json] on the document: printing, and parsing. *)
Class BindingsJson := {
  bj_print : Str.t → list (Str.t * (Str.t * list (KeyCombo.t * Action.t))) → result Str.t Str.t;
  bj_parse : Str.t → result BindingsDocument.t Str.t
}.
(** What is printed is parsed: the same profiles, as the object lists them. *)
Class LawfulBindingsJson `{BindingsJson} : Prop :=
  bj_parse_print active profiles :
    NoDup profiles.*1 →
    ∃ text listed, bj_print active profiles = Ok text ∧ listed ≡ₚ profiles ∧
      bj_parse text = Ok (BindingsDocument.mk (Some active) (Some (prod_map id Ok <$> listed))).

Module KeyBindingManager.
(* services_workspace_manager/src/keybindings.rs:266-271 KeyBindingManager *)
Record t := mk { active_profile : KeyBindingProfile.t; profiles : gmap Str.t KeyBindingProfile.t }.
#[global] Instance rebuild_t : Rebuild t := λ m, mk (active_profile m) (profiles m).
(* services_workspace_manager/src/keybindings.rs:275-287 KeyBindingManager::new *)
Definition new : t :=
  mk KeyBindingProfile.default_profile
    (<[Str.of_string "vim" := KeyBindingProfile.vim_profile]>
      (<[Str.of_string "default" := KeyBindingProfile.default_profile]> ∅)).
(** The active profile is changed through a mutable reference. *)
(* services_workspace_manager/src/keybindings.rs:295-297 KeyBindingManager::active_profile_mut *)
Definition active_profile_mut (f : KeyBindingProfile.t → KeyBindingProfile.t) (m : t) : t :=
  m <| active_profile ::= f |>.
(* services_workspace_manager/src/keybindings.rs:305-305 KeyBindingManager (not found) *)
Definition not_found (name : Str.t) : Str.t :=
  Str.of_string "Profile '" ++ name ++ Str.of_string "' not found".
(* services_workspace_manager/src/keybindings.rs:300-307 KeyBindingManager::set_profile *)
Definition set_profile (name : Str.t) (m : t) : result () Str.t * t :=
  match profiles m !! name with
  | Some profile => (Ok (), m <| active_profile := profile |>)
  | None => (Err (not_found name), m)
  end.
(* services_workspace_manager/src/keybindings.rs:310-312 KeyBindingManager::add_profile *)
Definition add_profile (p : KeyBindingProfile.t) (m : t) : t := m <| profiles ::= <[KeyBindingProfile.name p := p]> |>.
(* services_workspace_manager/src/keybindings.rs:315-326 KeyBindingManager::remove_profile *)
Definition remove_profile (name : Str.t) (m : t) : result () Str.t * t :=
  if decide (name = Str.of_string "default") then (Err (Str.of_string "Cannot remove default profile"), m)
  else if decide (KeyBindingProfile.name (active_profile m) = name)
  then (Err (Str.of_string "Cannot remove active profile"), m)
  else match profiles m !! name with
       | Some _ => (Ok (), m <| profiles ::= delete name |>)
       | None => (Err (not_found name), m)
       end.
(* services_workspace_manager/src/keybindings.rs:329-331 KeyBindingManager::get_profile *)
Definition get_profile (name : Str.t) (m : t) : option KeyBindingProfile.t := profiles m !! name.
(* services_workspace_manager/src/keybindings.rs:334-336 KeyBindingManager::profile_names *)
Definition profile_names `{HashOrder} (m : t) : list Str.t := (hm_iter (profiles m)).*1.
(* services_workspace_manager/src/keybindings.rs:339-341 KeyBindingManager::get_action *)
Definition get_action (e : KeyEvent.t) (m : t) : option Action.t :=
  KeyBindingProfile.get_action e (active_profile m).
(* services_workspace_manager/src/keybindings.rs:344-350 KeyBindingManager::to_json *)
Definition to_json `{HashOrder} `{BindingsJson} (m : t) : result Str.t Str.t :=
  bj_print (KeyBindingProfile.name (active_profile m))
    (prod_map id KeyBindingProfile.serialize <$> hm_iter (profiles m)).
(* services_workspace_manager/src/keybindings.rs:362-367 KeyBindingManager::from_json (profiles) *)
Fixpoint read_profiles (l : list (Str.t * result (Str.t * list (KeyCombo.t * Action.t)) Str.t))
    (acc : gmap Str.t KeyBindingProfile.t) : result (gmap Str.t KeyBindingProfile.t) Str.t :=
  match l with
  | [] => Ok acc
  | (name, Ok data) :: l => read_profiles l (<[name := KeyBindingProfile.deserialize data]> acc)
  | (name, Err e) :: _ =>
      Err (Str.of_string "Failed to parse profile '" ++ name ++ Str.of_string "': " ++ e)
  end.
(* services_workspace_manager/src/keybindings.rs:353-378 KeyBindingManager::from_json *)
Definition from_json `{BindingsJson} (json : Str.t) : result t Str.t :=
  match bj_parse json with
  | Err e => Err e
  | Ok data =>
      match BindingsDocument.active_profile data with
      | None => Err (Str.of_string "Missing active_profile")
      | Some active_name =>
          match BindingsDocument.profiles data with
          | None => Err (Str.of_string "Missing profiles")
          | Some profiles_data =>
              match read_profiles profiles_data ∅ with
              | Err e => Err e
              | Ok profiles =>
                  match profiles !! active_name with
                  | None => Err (Str.of_string "Active profile '" ++ active_name ++ Str.of_string "' not found")
                  | Some active_profile => Ok (mk active_profile profiles)
                  end
              end
          end
      end
  end.
End KeyBindingManager.

(** ** Theorems *)

Lemma str_leb_total s t : Utf8.leb s t = false → Utf8.leb t s = true.
Proof.
  revert t. induction s as [|c s IH]; intros [|d t]; simpl; try done.
  destruct (N.ltb_spec c d), (N.eqb_spec c d), (N.ltb_spec d c), (N.eqb_spec d c); simpl; try done; try lia. apply IH.
Qed.

Module PaletteSpec.
Section palette.
Context `{Lowercase}.
Import CommandPalette.

(** Few enough tags for the score to fit in 32 bits. *)
Definition tags_ok (d : CommandDescriptor.t) : Prop := len (CommandDescriptor.tags d) ≤ 1000000.

Lemma points_le q text e p c : e ≤ 10000 → p ≤ e → c ≤ p → CommandDescriptor.points q text e p c ≤ e.
Proof. intros. unfold CommandDescriptor.points. repeat case_match; lia. Qed.

Lemma relevance_score_returns q d : tags_ok d → ∃ n, CommandDescriptor.relevance_score q d = Return n.
Proof.
  intros Ht. unfold CommandDescriptor.relevance_score, tags_ok, len in *.
  destruct (negb (CommandDescriptor.enabled d)); [by eexists|].
  pose proof (points_le (to_lowercase q) (to_lowercase (CommandDescriptor.name d)) 10000 5000 1000
    ltac:(lia) ltac:(lia) ltac:(lia)) as Hp.
  set (p0 := CommandDescriptor.points _ _ _ _ _) in *.
  assert (add_u32 0 p0 = Return p0) as -> by (apply add_u32_Return; lia). simpl.
  assert (∀ l score, score + 3000 * N.of_nat (length l) ≤ 3000020000 →
    ∃ n, fold_outcome (λ score tag, add_u32 score (CommandDescriptor.points (to_lowercase q) (to_lowercase tag) 3000 1500 500))
           l score = Return n ∧ n ≤ score + 3000 * N.of_nat (length l)) as Hfold.
  { clear. induction l as [|tag l IH]; intros score Hs; simpl in *; [exists score; split; [done|lia]|].
    pose proof (points_le (to_lowercase q) (to_lowercase tag) 3000 1500 500 ltac:(lia) ltac:(lia) ltac:(lia)) as Hp.
    set (p := CommandDescriptor.points _ _ _ _ _) in *.
    assert (add_u32 score p = Return (score + p)) as -> by (apply add_u32_Return; lia). simpl.
    destruct (IH (score + p)) as (n & E & Hn); [lia|]. exists n. split; [done|lia]. }
  destruct (Hfold (CommandDescriptor.tags d) p0) as (n & -> & Hn); [lia|]. simpl.
  set (x := if contains _ _ then 100 else 0). assert (x ≤ 100) by (unfold x; case_match; lia).
  exists (n + x). apply add_u32_Return. lia.
Qed.

Lemma score_all_spec q l :
  Forall tags_ok l →
  ∃ scored, score_all q l = Return scored ∧ scored.*2 = l ∧
    Forall (λ x, CommandDescriptor.relevance_score q x.2 = Return x.1) scored.
Proof.
  induction 1 as [|d l Hd Hl (scored & E & Hs & Hf)]; simpl; [by exists []|].
  destruct (relevance_score_returns q d Hd) as [n Hn]. rewrite Hn, E. simpl.
  exists ((n, d) :: scored). split; [done|]. split; [by rewrite fmap_cons, Hs|]. by constructor.
Qed.

(** More relevant, or as relevant and not later in the alphabet. *)
Definition ranked (q : Str.t) (a b : CommandDescriptor.t) : Prop :=
  ∃ na nb, CommandDescriptor.relevance_score q a = Return na ∧ CommandDescriptor.relevance_score q b = Return nb ∧
    (nb < na ∨ nb = na ∧ Utf8.leb (CommandDescriptor.name a) (CommandDescriptor.name b) = true).

Lemma score_leb_total a b : score_leb a b = false → score_leb b a = true.
Proof.
  unfold score_leb. destruct (N.ltb_spec b.1 a.1), (N.eqb_spec b.1 a.1), (N.ltb_spec a.1 b.1), (N.eqb_spec a.1 b.1);
    simpl; try done; try lia. apply str_leb_total.
Qed.

(** A search of the palette returns exactly the enabled commands that match the query, each as
    often as it is registered, ordered by relevance and, where that is equal, by name. *)
Theorem search_ranks_the_matches q p :
  Forall tags_ok (list_commands p) →
  ∃ found, filter_commands q p = Return found ∧
    found ≡ₚ filter (λ d, CommandDescriptor.matches q d = true) (list_commands p) ∧
    Sorted (ranked q) found.
Proof.
  intros Ht. unfold filter_commands. set (l := filter _ (list_commands p)).
  destruct (score_all_spec q l) as (scored & -> & Hs & Hf).
  { rewrite Forall_forall in *. intros d Hd. apply Ht. by apply list_elem_of_filter in Hd as [_ ?]. }
  simpl. exists (stable_sort score_leb scored).*2. split; [done|]. split.
  { rewrite <-Hs. apply fmap_Permutation, stable_sort_Permutation. }
  assert (Forall (λ x, CommandDescriptor.relevance_score q x.2 = Return x.1) (stable_sort score_leb scored)) as Hf'
    by (by rewrite stable_sort_Permutation).
  pose proof (stable_sort_Sorted score_leb scored score_leb_total) as Hsort. clear -Hf' Hsort.
  induction Hsort as [|x l Hl IH Hx]; simpl; [constructor|]. apply Forall_cons in Hf' as [Hx1 Hl1].
  constructor; [by apply IH|]. destruct Hx as [|y l Hxy]; simpl; [constructor|]. constructor.
  apply Forall_cons in Hl1 as [Hy _]. exists x.1, y.1. split; [done|]. split; [done|].
  apply orb_true_iff in Hxy as [Hlt%N.ltb_lt|[Heq%N.eqb_eq Hle]%andb_true_iff]; auto.
Qed.

(** A command runs whatever capability its descriptor requires: nobody is asked for it. *)
Lemma capability_is_not_checked d cap h args p :
  CommandDescriptor.enabled d = true → commands p = [] →
  execute_command (CommandDescriptor.id d) args
    (register_command (CommandDescriptor.with_capability cap d) h p) = h args.
Proof.
  intros He Hp. unfold execute_command, lookup, register_command. simpl. rewrite Hp. simpl.
  rewrite decide_True by done. simpl. by rewrite He.
Qed.
End palette.

#[local] Existing Instance ascii_lowercase.
Definition sample : CommandPalette.t :=
  foldl (λ p d, CommandPalette.register_command d (λ _, Ok []) p) CommandPalette.new
    [ CommandDescriptor.new (Str.of_string "list") (Str.of_string "List Components") (Str.of_string "List all") [];
      CommandDescriptor.disabled
        (CommandDescriptor.new (Str.of_string "o") (Str.of_string "Open") (Str.of_string "") []);
      CommandDescriptor.new (Str.of_string "open") (Str.of_string "Open Editor") (Str.of_string "Open a file")
        [Str.of_string "file"];
      CommandDescriptor.new (Str.of_string "cli") (Str.of_string "CLI") (Str.of_string "A console") [Str.of_string "OPEN"] ].
Lemma search_ranks_the_matches_witness :
  ∃ found, CommandPalette.filter_commands (Str.of_string "open") sample = Return found ∧
    (CommandDescriptor.name <$> found) = [Str.of_string "Open Editor"; Str.of_string "CLI"].
Proof.
  destruct (search_ranks_the_matches (Str.of_string "open") sample) as (found & E & _).
  { unfold tags_ok. repeat constructor; vm_compute; discriminate. }
  exists found. split; [exact E|].
  assert (CommandPalette.filter_commands (Str.of_string "open") sample =
    Return (match CommandPalette.filter_commands (Str.of_string "open") sample with Return l => l | _ => [] end)) as E'
    by (vm_compute; reflexivity).
  rewrite E' in E. injection E as <-. vm_compute. reflexivity.
Defined.
End PaletteSpec.

Module BindingSpec.
Section bindings.
Context `{HashOrder}.

Lemma deserialize_serialize p : KeyBindingProfile.deserialize (KeyBindingProfile.serialize p) = p.
Proof.
  destruct p as [n b]. unfold KeyBindingProfile.deserialize, KeyBindingProfile.serialize. simpl. f_equal.
  apply insert_entries_id, hm_iter_perm.
Qed.

Lemma read_profiles_Ok l acc :
  KeyBindingManager.read_profiles (prod_map id Ok <$> l) acc =
  Ok (foldl (λ m '(k, d), <[k := KeyBindingProfile.deserialize d]> m) acc l).
Proof. revert acc. induction l as [|[n d] l IH]; intros acc; simpl; [done|]. apply IH. Qed.

(** What is saved loads back: for any order of the hash tables, reading the saved text gives
    the same profiles and the saved profile of the active name as the active one, or fails when no
    profile has that name. *)
Theorem saved_bindings_load_back `{LawfulBindingsJson} m :
  ∃ text, KeyBindingManager.to_json m = Ok text ∧
    KeyBindingManager.from_json text =
    let active := KeyBindingProfile.name (KeyBindingManager.active_profile m) in
    match KeyBindingManager.profiles m !! active with
    | Some p => Ok (KeyBindingManager.mk p (KeyBindingManager.profiles m))
    | None => Err (Str.of_string "Active profile '" ++ active ++ Str.of_string "' not found")
    end.
Proof.
  destruct m as [a ps]. unfold KeyBindingManager.to_json, KeyBindingManager.from_json. simpl.
  set (l := prod_map id KeyBindingProfile.serialize <$> hm_iter ps).
  assert (l.*1 = (hm_iter ps).*1) as Hfst by (unfold l; rewrite <-list_fmap_compose; apply list_fmap_ext; intros ? []; done).
  destruct (bj_parse_print (KeyBindingProfile.name a) l) as (text & listed & Hp & Hl & Hparse).
  { rewrite Hfst. apply hm_iter_NoDup_fst. }
  exists text. split; [done|]. rewrite Hparse. simpl. rewrite read_profiles_Ok.
  replace (foldl _ ∅ listed) with ps; [done|]. symmetry.
  apply map_eq. intros k.
  assert (listed ≡ₚ map_to_list (KeyBindingProfile.serialize <$> ps)) as Hm.
  { rewrite Hl, map_to_list_fmap. unfold l. by rewrite hm_iter_perm. }
  etrans; [exact (insert_entries_map (λ k, k) KeyBindingProfile.deserialize (λ x y E, E) listed _ k Hm)|].
  rewrite lookup_fmap. destruct (ps !! k); simpl; [|done]. by rewrite deserialize_serialize.
Qed.

(** A binding made in the active profile is not in what is saved, and is lost when it is loaded. *)
Lemma edited_binding_is_not_saved `{BindingsJson} combo action m :
  KeyBindingManager.to_json (KeyBindingManager.active_profile_mut (KeyBindingProfile.bind combo action) m) =
  KeyBindingManager.to_json m.
Proof. done. Qed.
End bindings.

(** The calls that change the manager. *)
Inductive op :=
| Edit (f : KeyBindingProfile.t → KeyBindingProfile.t)
| SetProfile (name : Str.t)
| AddProfile (p : KeyBindingProfile.t)
| RemoveProfile (name : Str.t).
Definition step (o : op) (m : KeyBindingManager.t) : KeyBindingManager.t :=
  match o with
  | Edit f => KeyBindingManager.active_profile_mut f m
  | SetProfile n => (KeyBindingManager.set_profile n m).2
  | AddProfile p => KeyBindingManager.add_profile p m
  | RemoveProfile n => (KeyBindingManager.remove_profile n m).2
  end.

(** Whatever profiles are added, removed, selected or edited, switching to the profile
    [default] works. *)
Theorem default_profile_is_always_available l :
  (KeyBindingManager.set_profile (Str.of_string "default") (foldl (λ m o, step o m) KeyBindingManager.new l)).1 = Ok ().
Proof.
  assert (is_Some (KeyBindingManager.profiles (foldl (λ m o, step o m) KeyBindingManager.new l)
    !! Str.of_string "default")) as [p Hp].
  { apply foldl_ind; [by eexists|]. intros m o _ [p Hp]. destruct o as [f|n|q|n]; simpl.
    - by exists p.
    - unfold KeyBindingManager.set_profile. destruct (KeyBindingManager.profiles m !! n); simpl; by exists p.
    - destruct (decide (KeyBindingProfile.name q = Str.of_string "default")) as [->|Hne].
      + exists q. apply lookup_insert_eq.
      + exists p. by rewrite lookup_insert_ne.
    - unfold KeyBindingManager.remove_profile. case_decide as Hd; [by exists p|]. case_decide; [by exists p|].
      destruct (KeyBindingManager.profiles m !! n); [|by exists p]. exists p. simpl. by rewrite lookup_delete_ne. }
  unfold KeyBindingManager.set_profile. by rewrite Hp.
Qed.
End BindingSpec.

Module BindingExample.
#[local] Existing Instance canonical_order.
#[local] Instance action_countable : Countable Action.t.
Proof.
  apply (inj_countable'
    (λ a, match a with
          | Action.SwitchTile => inl 0 | Action.FocusTop => inl 1 | Action.FocusBottom => inl 2
          | Action.Save => inl 3 | Action.Quit => inl 4 | Action.CommandMode => inl 5
          | Action.Custom n => inr n
          end)
    (λ x, match x with
          | inl 0 => Action.SwitchTile | inl 1 => Action.FocusTop | inl 2 => Action.FocusBottom
          | inl 3 => Action.Save | inl 4 => Action.Quit | inl _ => Action.CommandMode
          | inr n => Action.Custom n
          end)). by intros [].
Defined.
(** A serialisation: the document as one number. *)
#[local] Instance json : BindingsJson := {|
  bj_print a ps := Ok [Npos (encode (a, ps))];
  bj_parse text :=
    match text with
    | [Npos p] =>
        match decode p with
        | Some (a, ps) => Ok (BindingsDocument.mk (Some a) (Some (prod_map id Ok <$> ps)))
        | None => Err []
        end
    | _ => Err []
    end
|}.
#[local] Instance json_lawful : LawfulBindingsJson.
Proof. intros a ps _. eexists _, ps. split; [done|]. split; [done|]. unfold bj_parse, json. by rewrite decode_encode. Qed.
Lemma saved_bindings_load_back_witness :
  ∃ text, KeyBindingManager.to_json KeyBindingManager.new = Ok text ∧
    KeyBindingManager.from_json text = Ok KeyBindingManager.new.
Proof.
  destruct (BindingSpec.saved_bindings_load_back KeyBindingManager.new) as (text & E & Hfrom).
  exists text. split; [exact E|]. rewrite Hfrom. unfold KeyBindingManager.new.
  cbn [KeyBindingManager.active_profile KeyBindingManager.profiles].
  change (KeyBindingProfile.name KeyBindingProfile.default_profile) with (Str.of_string "default").
  cbv zeta. rewrite lookup_insert_ne by done. rewrite lookup_insert_eq. reflexivity.
Defined.
End BindingExample.
