(* ===== verification/Commands.v ===== *)
(** * The command surface of the workspace

    [services_workspace_manager/src]: [command_surface.rs] (the tables of commands),
    [commands.rs] (parsing and printing), [workspace_status.rs] (validation at the prompt,
    suggestions, status, history, breadcrumbs), [help.rs], [command_registry.rs], and the types
    and errors of [lib.rs] they speak about.  Literals of the source are [string]s. *)

From S2P Require Import Prelude CoreTypes Editor Text Layout Palette.
Open Scope string_scope.
Open Scope list_scope.
Open Scope nat_scope.

#[local] Notation str := Str.of_string.
(** The characters of a long dash between blanks. *)
Definition dash : Str.t := [32; 8212; 32]%N.

(** [Uuid::parse_str] (a third-party crate), which reads what [Display] prints. *)
Class UuidText `{UuidFormat} := {
  parse_uuid : Str.t → option Uuid;
  parse_uuid_display : ∀ u, parse_uuid (str (uuid_to_string u)) = Some u;
  uuid_display_word : ∀ u, word (str (uuid_to_string u))
}.

(** ** Components *)

Module ComponentType.
(* services_workspace_manager/src/lib.rs:143-155 ComponentType *)
Inductive t := Editor | Cli | PipelineExecutor | FilePicker | Custom.
#[global] Instance eq_dec : EqDecision t.
Proof. solve_decision. Defined.
(* services_workspace_manager/src/lib.rs:187-197 ComponentType::fmt *)
Definition display (c : t) : string :=
  match c with
  | Editor => "Editor" | Cli => "CLI" | PipelineExecutor => "PipelineExecutor"
  | FilePicker => "FilePicker" | Custom => "Custom"
  end.
End ComponentType.

Module ComponentState.
(* services_workspace_manager/src/lib.rs:200-210 ComponentState *)
Inductive t := Running | Exited | Cancelled | Failed.
#[global] Instance eq_dec : EqDecision t.
Proof. solve_decision. Defined.
(* services_workspace_manager/src/lib.rs:212-221 ComponentState::fmt *)
Definition display (s : t) : string :=
  match s with Running => "Running" | Exited => "Exited" | Cancelled => "Cancelled" | Failed => "Failed" end.
End ComponentState.

(* services_workspace_manager/src/lib.rs:136-140 ComponentId::fmt *)
Definition component_id_display `{UuidFormat} (c : ComponentId.t) : Str.t :=
  str "comp:" ++ str (uuid_to_string (ComponentId.uuid c)).

Module WorkspaceError.
(* services_workspace_manager/src/lib.rs:606-642 WorkspaceError *)
Inductive t :=
| ComponentNotFound (id : ComponentId.t)
| LaunchDenied (reason : Str.t)
| FocusDenied (reason : Str.t)
| NotFocusable (id : ComponentId.t)
| NoComponents
| InvalidCommand (text : Str.t)
| PolicyError (text : Str.t)
| BudgetExhausted (id : ComponentId.t)
| FocusError (text : Str.t)
| MissingLaunchContext (component_type : ComponentType.t) (reason : Str.t).
Section texts.
Context `{UuidFormat}.
(* services_workspace_manager/src/lib.rs:604-642 WorkspaceError (Display) *)
Definition display (e : t) : Str.t :=
  match e with
  | ComponentNotFound id => str "Component not found: " ++ component_id_display id
  | LaunchDenied reason => str "Component launch denied: " ++ reason
  | FocusDenied reason => str "Focus denied: " ++ reason
  | NotFocusable id => str "Component not focusable: " ++ component_id_display id
  | NoComponents => str "No components available"
  | InvalidCommand text => str "Invalid command: " ++ text
  | PolicyError text => str "Policy error: " ++ text
  | BudgetExhausted id => str "Budget exhausted for component: " ++ component_id_display id
  | FocusError text => str "Focus error: " ++ text
  | MissingLaunchContext ty reason =>
      str "Missing launch context for " ++ str (ComponentType.display ty) ++ str ": " ++ reason
  end.
(* services_workspace_manager/src/lib.rs:653-709 WorkspaceError::actionable_message *)
Definition actionable_message (e : t) : Str.t * list string :=
  match e with
  | ComponentNotFound _ => (display e, ["list"; "help workspace"])
  | LaunchDenied _ => (display e, ["help workspace"])
  | FocusDenied _ => (display e, ["list"])
  | NotFocusable _ => (display e, ["list"; "next"])
  | NoComponents => (display e, ["open editor <path>"; "help"])
  | InvalidCommand _ => (display e, ["help"])
  | PolicyError _ => (display e, ["help system"])
  | BudgetExhausted _ => (display e, ["close {}"; "list"])
  | FocusError _ => (display e, ["list"; "next"])
  | MissingLaunchContext ty reason =>
      (str "Cannot launch " ++ str (ComponentType.display ty) ++ str ": " ++ reason,
       match ty with
       | ComponentType.FilePicker => ["open editor <path>"; "help workspace"]
       | _ => ["help workspace"]
       end)
  end.
(* services_workspace_manager/src/lib.rs:713-720 WorkspaceError::format_with_actions *)
Definition format_with_actions (e : t) : Str.t :=
  let '(message, actions) := actionable_message e in
  match actions with
  | [] => message
  | _ => message ++ dash ++ str "Try: " ++ join_with (str " | ") (str <$> actions)
  end.
End texts.
End WorkspaceError.

(** ** The tables ([command_surface.rs]) *)

Module HelpCategory.
(* services_workspace_manager/src/help.rs:14-26 HelpCategory *)
Inductive t := Overview | Workspace | Editor | Keys | System.
#[global] Instance eq_dec : EqDecision t.
Proof. solve_decision. Defined.
(* services_workspace_manager/src/help.rs:201-211 HelpCategory::fmt *)
Definition display (c : t) : string :=
  match c with
  | Overview => "overview" | Workspace => "workspace" | Editor => "editor" | Keys => "keys" | System => "system"
  end.
End HelpCategory.

Module PaletteDescriptorSpec.
(* services_workspace_manager/src/command_surface.rs:18-28 PaletteDescriptorSpec *)
Record t := mk {
  id : string;
  name : string;
  description : string;
  tags : list string;
  category : string;
  keybinding : option string;
  prompt_pattern : option string;
  requires_args : bool
}.
End PaletteDescriptorSpec.

Module LaunchCommandSpec.
(* services_workspace_manager/src/command_surface.rs:30-36 LaunchCommandSpec *)
Record t := mk {
  token : string;
  component_type : ComponentType.t;
  required_usage : option string;
  palette : PaletteDescriptorSpec.t
}.
End LaunchCommandSpec.

(* services_workspace_manager/src/command_surface.rs:38-99 LAUNCH_COMMAND_SPECS *)
Definition LAUNCH_COMMAND_SPECS : list LaunchCommandSpec.t :=
  [ LaunchCommandSpec.mk "editor" ComponentType.Editor None
      (PaletteDescriptorSpec.mk "open_editor" "Open Editor" "Open a file in the text editor"
         ["editor"; "open"; "file"] "Workspace" (Some "Ctrl+O") (Some "open editor ") false);
    LaunchCommandSpec.mk "cli" ComponentType.Cli None
      (PaletteDescriptorSpec.mk "open_cli" "Open CLI" "Open an interactive CLI component"
         ["cli"; "open"; "console"] "Workspace" None (Some "open cli ") false);
    LaunchCommandSpec.mk "pipeline" ComponentType.PipelineExecutor None
      (PaletteDescriptorSpec.mk "open_pipeline" "Open Pipeline" "Open an interactive pipeline executor component"
         ["pipeline"; "open"; "executor"] "Workspace" None (Some "open pipeline ") false);
    LaunchCommandSpec.mk "custom" ComponentType.Custom (Some "Usage: open custom <entry> [args...]")
      (PaletteDescriptorSpec.mk "open_custom" "Open Custom Host" "Open a custom host by entry name"
         ["custom"; "open"; "entry"] "Workspace" (Some "Ctrl+Shift+O") (Some "open custom ") true) ].

Module HelperCommandKind.
(* services_workspace_manager/src/command_surface.rs:101-105 HelperCommandKind *)
Inductive t := RecentFiles | OpenFilePicker.
#[global] Instance eq_dec : EqDecision t.
Proof. solve_decision. Defined.
End HelperCommandKind.

Module HelperCommandSpec.
(* services_workspace_manager/src/command_surface.rs:107-113 HelperCommandSpec *)
Record t := mk {
  kind : HelperCommandKind.t;
  aliases : list (list string);
  usage : string;
  palette : PaletteDescriptorSpec.t
}.
End HelperCommandSpec.

(* services_workspace_manager/src/command_surface.rs:115-158 HELPER_COMMAND_SPECS *)
Definition HELPER_COMMAND_SPECS : list HelperCommandSpec.t :=
  [ HelperCommandSpec.mk HelperCommandKind.RecentFiles
      [["recent"]; ["recent"; "files"]; ["open"; "recent"]; ["open"; "recent"; "files"]]
      "Usage: recent"
      (PaletteDescriptorSpec.mk "recent" "Recent Files" "Show recently opened files"
         ["recent"; "history"; "files"] "Workspace" None (Some "recent") false);
    HelperCommandSpec.mk HelperCommandKind.OpenFilePicker
      [["open"; "file"]; ["open"; "file-picker"]]
      "Usage: open file"
      (PaletteDescriptorSpec.mk "open_file_picker" "Open File Picker" "Open the file picker component"
         ["file"; "picker"; "open"] "Workspace" None (Some "open file") false) ].

(* services_workspace_manager/src/command_surface.rs:160-301 NON_LAUNCH_PALETTE_SPECS *)
Definition NON_LAUNCH_PALETTE_SPECS : list PaletteDescriptorSpec.t :=
  [ PaletteDescriptorSpec.mk "list" "List Components" "List all active components"
      ["list"; "components"] "Workspace" (Some "Ctrl+L") None false;
    PaletteDescriptorSpec.mk "focus_next" "Next Component" "Focus the next component"
      ["next"; "focus"] "Workspace" (Some "Alt+Tab") None false;
    PaletteDescriptorSpec.mk "focus_prev" "Previous Component" "Focus the previous component"
      ["prev"; "previous"; "focus"] "Workspace" (Some "Alt+Shift+Tab") None false;
    PaletteDescriptorSpec.mk "close" "Close Component" "Close a component by ID"
      ["close"; "kill"] "Workspace" None (Some "close ") true;
    PaletteDescriptorSpec.mk "help" "Help" "Show help overview" ["help"; "?"] "Workspace" (Some "?") None false;
    PaletteDescriptorSpec.mk "help_workspace" "Help: Workspace" "Show workspace commands help"
      ["help"; "workspace"] "Workspace" None (Some "help workspace") false;
    PaletteDescriptorSpec.mk "help_editor" "Help: Editor" "Show editor commands help"
      ["help"; "editor"] "Editor" None (Some "help editor") false;
    PaletteDescriptorSpec.mk "help_keys" "Help: Keyboard Shortcuts" "Show keyboard shortcuts reference"
      ["help"; "keys"; "keyboard"; "shortcuts"] "Workspace" None (Some "help keys") false;
    PaletteDescriptorSpec.mk "help_system" "Help: System" "Show system commands help"
      ["help"; "system"] "System" None (Some "help system") false;
    PaletteDescriptorSpec.mk "save" "Save File" "Save the current file"
      ["save"; "write"] "Editor" (Some "Ctrl+S") None false;
    PaletteDescriptorSpec.mk "quit" "Quit Workspace" "Exit the workspace"
      ["quit"; "exit"] "System" (Some "Ctrl+Q") None false;
    PaletteDescriptorSpec.mk "boot_profile_show" "Boot Profile: Show" "Show current boot profile configuration"
      ["boot"; "profile"; "show"] "System" None (Some "boot profile show") false;
    PaletteDescriptorSpec.mk "boot_profile_set" "Boot Profile: Set" "Set boot profile (workspace/editor/kiosk)"
      ["boot"; "profile"; "set"] "System" None (Some "boot profile set ") true;
    PaletteDescriptorSpec.mk "boot_profile_save" "Boot Profile: Save" "Persist current boot profile configuration"
      ["boot"; "profile"; "save"] "System" None (Some "boot profile save") false ].

Module ComponentIdCommandSpec.
(* services_workspace_manager/src/command_surface.rs:303-307 ComponentIdCommandSpec *)
Record t := mk { token : string; usage : string }.
End ComponentIdCommandSpec.

(* services_workspace_manager/src/command_surface.rs:309-322 COMPONENT_ID_COMMAND_SPECS *)
Definition COMPONENT_ID_COMMAND_SPECS : list ComponentIdCommandSpec.t :=
  [ ComponentIdCommandSpec.mk "focus" "Usage: focus <component_id>";
    ComponentIdCommandSpec.mk "close" "Usage: close <component_id>";
    ComponentIdCommandSpec.mk "status" "Usage: status <component_id>" ].

Module HelpTopicSpec.
(* services_workspace_manager/src/command_surface.rs:324-328 HelpTopicSpec *)
Record t := mk { topic : HelpCategory.t; aliases : list string }.
End HelpTopicSpec.

(* services_workspace_manager/src/command_surface.rs:330-347 HELP_TOPIC_SPECS *)
Definition HELP_TOPIC_SPECS : list HelpTopicSpec.t :=
  [ HelpTopicSpec.mk HelpCategory.Workspace ["workspace"];
    HelpTopicSpec.mk HelpCategory.Editor ["editor"];
    HelpTopicSpec.mk HelpCategory.Keys ["keys"; "keyboard"; "shortcuts"];
    HelpTopicSpec.mk HelpCategory.System ["system"] ].

(** The source has this type three times: for [open], for other commands, and for the prompt. *)
Module PromptValidation.
(* services_workspace_manager/src/workspace_status.rs:317-325 PromptValidation *)
Inductive t := ValidPrefix | ValidComplete | Invalid.
#[global] Instance eq_dec : EqDecision t.
Proof. solve_decision. Defined.
(* services_workspace_manager/src/workspace_status.rs:332-338 PromptValidation::prompt_indicator *)
Definition prompt_indicator (v : t) : string :=
  match v with ValidPrefix => ">" | ValidComplete => "$" | Invalid => "?" end.
End PromptValidation.

Module SuggestionSpec.
(* services_workspace_manager/src/command_surface.rs:363-367 SuggestionSpec *)
Record t := mk { pattern : string; description : string }.
End SuggestionSpec.

Module PromptSuggestionSpec.
(* services_workspace_manager/src/command_surface.rs:369-373 PromptSuggestionSpec *)
Record t := mk { pattern : Str.t; description : string }.
End PromptSuggestionSpec.

(* services_workspace_manager/src/command_surface.rs:375-392 DEFAULT_SUGGESTIONS *)
Definition DEFAULT_SUGGESTIONS : list SuggestionSpec.t :=
  [ SuggestionSpec.mk "open editor <path>" "Open file in editor";
    SuggestionSpec.mk "open file" "Open file picker";
    SuggestionSpec.mk "help" "Show help overview";
    SuggestionSpec.mk "recent" "Show recent files" ].
(* services_workspace_manager/src/command_surface.rs:394-407 OPEN_PREFIX_SUGGESTIONS *)
Definition OPEN_PREFIX_SUGGESTIONS : list SuggestionSpec.t :=
  [ SuggestionSpec.mk "open editor <path>" "Open file in editor";
    SuggestionSpec.mk "open file" "Open file picker";
    SuggestionSpec.mk "open recent" "Show recent files" ].
(* services_workspace_manager/src/command_surface.rs:409-418 RECENT_PREFIX_SUGGESTIONS *)
Definition RECENT_PREFIX_SUGGESTIONS : list SuggestionSpec.t :=
  [ SuggestionSpec.mk "recent" "Show recent files"; SuggestionSpec.mk "open recent" "Show recent files" ].
(* services_workspace_manager/src/command_surface.rs:420-441 HELP_PREFIX_SUGGESTIONS *)
Definition HELP_PREFIX_SUGGESTIONS : list SuggestionSpec.t :=
  [ SuggestionSpec.mk "help" "Overview"; SuggestionSpec.mk "help workspace" "Workspace commands";
    SuggestionSpec.mk "help editor" "Editor commands"; SuggestionSpec.mk "help keys" "Keyboard shortcuts";
    SuggestionSpec.mk "help system" "System commands" ].
(* services_workspace_manager/src/command_surface.rs:443-453 VALID_PREFIX_GROUPS *)
Definition VALID_PREFIX_GROUPS : list (list string) :=
  [ ["op"; "ope"]; ["li"; "lis"]; ["ne"; "nex"]; ["pr"; "pre"]; ["cl"; "clo"; "clos"]; ["fo"; "foc"; "focu"];
    ["st"; "sta"; "stat"; "statu"]; ["he"; "hel"]; ["re"; "rec"; "rece"; "recen"] ].

(** [iter().find(..)]. *)
Definition find_in {A} (p : A → bool) (l : list A) : option A := List.find p l.

(* services_workspace_manager/src/command_surface.rs:455-457 launch_command_by_token *)
Definition launch_command_by_token (token : Str.t) : option LaunchCommandSpec.t :=
  find_in (λ spec, bool_decide (str (LaunchCommandSpec.token spec) = token)) LAUNCH_COMMAND_SPECS.
(* services_workspace_manager/src/command_surface.rs:459-463 helper_command_by_alias *)
Definition helper_command_by_alias (parts : list Str.t) : option HelperCommandSpec.t :=
  find_in (λ spec, existsb (λ alias_parts, bool_decide (str <$> alias_parts = parts)) (HelperCommandSpec.aliases spec))
    HELPER_COMMAND_SPECS.
(* services_workspace_manager/src/command_surface.rs:465-471 helper_command_by_open_token *)
Definition helper_command_by_open_token (token : Str.t) : option HelperCommandSpec.t :=
  find_in (λ spec, existsb (λ alias_parts,
             match alias_parts with
             | a :: b :: _ => bool_decide (a = "open") && bool_decide (str b = token)
             | _ => false
             end) (HelperCommandSpec.aliases spec))
    HELPER_COMMAND_SPECS.
(* services_workspace_manager/src/command_surface.rs:473-479 component_id_command_by_token *)
Definition component_id_command_by_token (token : Str.t) : option ComponentIdCommandSpec.t :=
  find_in (λ spec, bool_decide (str (ComponentIdCommandSpec.token spec) = token)) COMPONENT_ID_COMMAND_SPECS.
(** A usage text without its introduction. *)
Definition without_usage (usage : string) : Str.t :=
  match strip_prefix (str "Usage: ") (str usage) with Some p => p | None => str usage end.
(* services_workspace_manager/src/command_surface.rs:481-484 component_id_usage_pattern *)
Definition component_id_usage_pattern (token : Str.t) : option Str.t :=
  (λ spec, without_usage (ComponentIdCommandSpec.usage spec)) <$> component_id_command_by_token token.
(* services_workspace_manager/src/command_surface.rs:486-504 non_launch_prompt_pattern *)
Definition non_launch_prompt_pattern (spec : PaletteDescriptorSpec.t) : option Str.t :=
  let id := PaletteDescriptorSpec.id spec in
  if decide (id = "focus_next") then Some (str "next")
  else if decide (id = "focus_prev") then Some (str "prev")
  else if decide (id = "close") then component_id_usage_pattern (str id)
  else match PaletteDescriptorSpec.prompt_pattern spec with
       | Some pattern => Some (trim_end (str pattern))
       | None =>
           if PaletteDescriptorSpec.requires_args spec then None
           else if bool_decide (id ∈ ["list"; "help"; "save"; "quit"]) then Some (str id) else None
       end.
(* services_workspace_manager/src/command_surface.rs:506-516 non_launch_prompt_suggestion_by_id *)
Definition non_launch_prompt_suggestion_by_id (id : string) : option PromptSuggestionSpec.t :=
  spec ← find_in (λ spec, bool_decide (PaletteDescriptorSpec.id spec = id)) NON_LAUNCH_PALETTE_SPECS;
  pattern ← non_launch_prompt_pattern spec;
  Some (PromptSuggestionSpec.mk pattern (PaletteDescriptorSpec.description spec)).
(* services_workspace_manager/src/command_surface.rs:518-531 non_launch_prefix_suggestions *)
Definition non_launch_prefix_suggestions (prefix : Str.t) : list PromptSuggestionSpec.t :=
  omap (λ spec,
      match non_launch_prompt_suggestion_by_id (PaletteDescriptorSpec.id spec) with
      | Some suggestion =>
          if Str.starts_with prefix (PromptSuggestionSpec.pattern suggestion) then Some suggestion else None
      | None => None
      end)
    (filter (λ spec, negb (Str.starts_with (str "help") (str (PaletteDescriptorSpec.id spec))) = true)
       NON_LAUNCH_PALETTE_SPECS).
(* services_workspace_manager/src/command_surface.rs:533-550 validate_component_id_invocation *)
Definition validate_component_id_invocation (parts : list Str.t) : PromptValidation.t :=
  match parts with
  | [] => PromptValidation.Invalid
  | cmd :: args =>
      match component_id_command_by_token cmd with
      | None => PromptValidation.Invalid
      | Some _ =>
          match args with
          | [] => PromptValidation.ValidPrefix
          | [id] => if Str.starts_with (str "comp:") id then PromptValidation.ValidComplete else PromptValidation.Invalid
          | _ => PromptValidation.Invalid
          end
      end
  end.
(* services_workspace_manager/src/command_surface.rs:552-569 parse_help_topic *)
Definition parse_help_topic (topic_token : option Str.t) : option HelpCategory.t :=
  match topic_token with
  | None => Some HelpCategory.Overview
  | Some token =>
      if eq_ignore_ascii_case token (str "overview") then Some HelpCategory.Overview
      else HelpTopicSpec.topic <$>
             find_in (λ spec, existsb (λ alias, eq_ignore_ascii_case (str alias) token) (HelpTopicSpec.aliases spec))
               HELP_TOPIC_SPECS
  end.
(* services_workspace_manager/src/command_surface.rs:571-587 validate_help_invocation *)
Definition validate_help_invocation (parts : list Str.t) : PromptValidation.t :=
  match parts with
  | [] => PromptValidation.Invalid
  | cmd :: args =>
      if negb (bool_decide (cmd = str "help")) then PromptValidation.Invalid
      else match args with
           | [] => PromptValidation.ValidComplete
           | [topic] =>
               match parse_help_topic (Some topic) with
               | Some _ => PromptValidation.ValidComplete
               | None => PromptValidation.Invalid
               end
           | _ => PromptValidation.Invalid
           end
  end.
(* services_workspace_manager/src/command_surface.rs:589-595 help_usage_pattern *)
Definition help_usage_pattern : Str.t :=
  str "help [" ++ join_with (str "|") (str <$> omap (λ spec, head (HelpTopicSpec.aliases spec)) HELP_TOPIC_SPECS)
  ++ str "]".
(* services_workspace_manager/src/command_surface.rs:597-619 validate_open_invocation *)
Definition validate_open_invocation (parts : list Str.t) : PromptValidation.t :=
  match parts with
  | [] => PromptValidation.Invalid
  | cmd :: args =>
      if negb (bool_decide (cmd = str "open")) then PromptValidation.Invalid
      else match args with
           | [] => PromptValidation.ValidPrefix
           | token :: rest =>
               match helper_command_by_alias parts with
               | Some _ => PromptValidation.ValidComplete
               | None =>
                   match launch_command_by_token token with
                   | None => PromptValidation.Invalid
                   | Some spec =>
                       match LaunchCommandSpec.required_usage spec, rest with
                       | Some _, [] => PromptValidation.ValidPrefix
                       | _, _ => PromptValidation.ValidComplete
                       end
                   end
               end
           end
  end.
(* services_workspace_manager/src/command_surface.rs:621-625 is_known_command_prefix *)
Definition is_known_command_prefix (cmd : Str.t) : bool :=
  existsb (λ group, existsb (λ p, bool_decide (str p = cmd)) group) VALID_PREFIX_GROUPS.

(** ** Boot profiles (the type; the manager is in the workspace) *)

Module BootProfile.
(* services_workspace_manager/src/boot_profile.rs:17-35 BootProfile *)
Inductive t := Workspace | Editor | Kiosk.
#[global] Instance eq_dec : EqDecision t.
Proof. solve_decision. Defined.
(* services_workspace_manager/src/boot_profile.rs:39-45 BootProfile::name *)
Definition name (p : t) : string :=
  match p with Workspace => "Workspace" | Editor => "Editor" | Kiosk => "Kiosk" end.
(* services_workspace_manager/src/boot_profile.rs:48-56 BootProfile::description *)
Definition description (p : t) : string :=
  match p with
  | Workspace => "Interactive workspace with command prompt and service management"
  | Editor => "Boot straight into vi editor (power-on editing)"
  | Kiosk => "Single-app kiosk mode (locked down, no shell)"
  end.
(* services_workspace_manager/src/boot_profile.rs:59-66 BootProfile::parse *)
Definition parse `{Lowercase} (s : Str.t) : option t :=
  let lower := to_lowercase s in
  if decide (lower = str "workspace") then Some Workspace
  else if decide (lower = str "editor") then Some Editor
  else if decide (lower = str "kiosk") then Some Kiosk
  else None.
End BootProfile.

(** ** Commands ([commands.rs]) *)

Module WorkspaceCommand.
(* services_workspace_manager/src/commands.rs:18-59 WorkspaceCommand *)
Inductive t :=
| Open (component_type : ComponentType.t) (args : list Str.t)
| List_
| Focus (component_id : ComponentId.t)
| FocusNext
| FocusPrev
| Close (component_id : ComponentId.t)
| Status (component_id : ComponentId.t)
| GetFocus
| SettingsList
| SettingsSet (key value : Str.t)
| SettingsReset (key : Str.t)
| SettingsSave
| OpenFilePicker
| RecentFiles
| Help (category : HelpCategory.t)
| BootProfileShow
| BootProfileSet (profile : BootProfile.t)
| BootProfileSave.
End WorkspaceCommand.

(** The result of a parser: a command, an error, or the panic of its [unreachable!]. *)
Notation parsed := (outcome (result WorkspaceCommand.t WorkspaceError.t)).
Definition accept (c : WorkspaceCommand.t) : parsed := Return (Ok c).
Definition reject (text : Str.t) : parsed := Return (Err (WorkspaceError.InvalidCommand text)).

Section parse.
Context `{UuidText} `{Lowercase}.
(* services_workspace_manager/src/commands.rs:678-708 parse_component_id_surface_command *)
Definition parse_component_id_surface_command (cmd : Str.t) (args : list Str.t) : parsed :=
  match component_id_command_by_token cmd with
  | None => reject (str "Unknown component target command: " ++ cmd)
  | Some spec =>
      match args with
      | [id_str] =>
          if negb (Str.starts_with (str "comp:") id_str) then reject (str "Component ID must start with 'comp:'")
          else
            let uuid_str := drop 5 id_str in
            match parse_uuid uuid_str with
            | None => reject (str "Invalid UUID: " ++ uuid_str)
            | Some uuid =>
                let component_id := ComponentId.mk uuid in
                if decide (ComponentIdCommandSpec.token spec = "focus") then accept (WorkspaceCommand.Focus component_id)
                else if decide (ComponentIdCommandSpec.token spec = "close") then accept (WorkspaceCommand.Close component_id)
                else if decide (ComponentIdCommandSpec.token spec = "status") then accept (WorkspaceCommand.Status component_id)
                else Panic
            end
      | _ => reject (str (ComponentIdCommandSpec.usage spec))
      end
  end.
(* services_workspace_manager/src/commands.rs:539-569 parse_command (open) *)
Definition parse_open (args : list Str.t) : parsed :=
  match args with
  | [] => reject (str "Usage: open <component_type> [args...]")
  | token :: rest =>
      match launch_command_by_token token with
      | None =>
          match helper_command_by_open_token token with
          | Some helper_spec => reject (str (HelperCommandSpec.usage helper_spec))
          | None => reject (str "Unknown component type: " ++ token)
          end
      | Some open_spec =>
          match LaunchCommandSpec.required_usage open_spec, rest with
          | Some usage, [] => reject (str usage)
          | _, _ => accept (WorkspaceCommand.Open (LaunchCommandSpec.component_type open_spec) rest)
          end
      end
  end.
(* services_workspace_manager/src/commands.rs:574-587 parse_command (help) *)
Definition parse_help (args : list Str.t) : parsed :=
  let category :=
    match args with
    | [] => parse_help_topic None
    | [topic] => parse_help_topic (Some topic)
    | _ => None
    end in
  match category with
  | Some category => accept (WorkspaceCommand.Help category)
  | None => reject (str "Usage: " ++ help_usage_pattern)
  end.
(* services_workspace_manager/src/commands.rs:588-625 parse_command (settings) *)
Definition parse_settings (args : list Str.t) : parsed :=
  match args with
  | [] => reject (str "Usage: settings <list|set|reset|save>")
  | sub :: rest =>
      if decide (sub = str "list") then accept WorkspaceCommand.SettingsList
      else if decide (sub = str "set") then
        match rest with
        | key :: w :: words => accept (WorkspaceCommand.SettingsSet key (join_with [32%N] (w :: words)))
        | _ => reject (str "Usage: settings set <key> <value>")
        end
      else if decide (sub = str "reset") then
        match rest with
        | key :: _ => accept (WorkspaceCommand.SettingsReset key)
        | [] => reject (str "Usage: settings reset <key>")
        end
      else if decide (sub = str "save") then accept WorkspaceCommand.SettingsSave
      else reject (str "Unknown settings command: " ++ sub)
  end.
(* services_workspace_manager/src/commands.rs:626-669 parse_command (boot) *)
Definition parse_boot (args : list Str.t) : parsed :=
  match args with
  | [] => reject (str "Usage: boot profile <show|set|save>")
  | what :: rest =>
      if decide (what = str "profile") then
        match rest with
        | [] => reject (str "Usage: boot profile <show|set|save>")
        | sub :: rest =>
            if decide (sub = str "show") then accept WorkspaceCommand.BootProfileShow
            else if decide (sub = str "set") then
              match rest with
              | [] => reject (str "Usage: boot profile set <workspace|editor|kiosk>")
              | p :: _ =>
                  match BootProfile.parse p with
                  | Some profile => accept (WorkspaceCommand.BootProfileSet profile)
                  | None => reject (str "Unknown boot profile: " ++ p)
                  end
              end
            else if decide (sub = str "save") then accept WorkspaceCommand.BootProfileSave
            else reject (str "Unknown boot profile command: " ++ sub)
        end
      else reject (str "Unknown boot command: " ++ what)
  end.
(* services_workspace_manager/src/commands.rs:531-675 parse_command (words) *)
Definition parse_words (parts : list Str.t) : parsed :=
  match parts with
  | [] => reject (str "Empty command")
  | cmd :: args =>
      match helper_command_by_alias parts with
      | Some helper =>
          accept match HelperCommandSpec.kind helper with
                 | HelperCommandKind.RecentFiles => WorkspaceCommand.RecentFiles
                 | HelperCommandKind.OpenFilePicker => WorkspaceCommand.OpenFilePicker
                 end
      | None =>
          if decide (cmd = str "open") then parse_open args
          else if decide (cmd = str "list") then accept WorkspaceCommand.List_
          else if decide (cmd = str "next") then accept WorkspaceCommand.FocusNext
          else if decide (cmd = str "prev" ∨ cmd = str "previous") then accept WorkspaceCommand.FocusPrev
          else if decide (cmd = str "focus" ∨ cmd = str "close" ∨ cmd = str "status")
          then parse_component_id_surface_command cmd args
          else if decide (cmd = str "help") then parse_help args
          else if decide (cmd = str "settings") then parse_settings args
          else if decide (cmd = str "boot") then parse_boot args
          else reject (str "Unknown command: " ++ cmd)
      end
  end.
(* services_workspace_manager/src/commands.rs:524-529 parse_command *)
Definition parse_command (input : Str.t) : parsed := parse_words (split_whitespace input).
(* services_workspace_manager/src/commands.rs:711-749 format_command *)
Definition format_command (c : WorkspaceCommand.t) : Str.t :=
  match c with
  | WorkspaceCommand.Open ty args =>
      match args with
      | [] => str "open " ++ str (ComponentType.display ty)
      | _ => str "open " ++ str (ComponentType.display ty) ++ str " " ++ join_with [32%N] args
      end
  | WorkspaceCommand.List_ => str "list"
  | WorkspaceCommand.Focus id => str "focus " ++ component_id_display id
  | WorkspaceCommand.FocusNext => str "next"
  | WorkspaceCommand.FocusPrev => str "prev"
  | WorkspaceCommand.Close id => str "close " ++ component_id_display id
  | WorkspaceCommand.Status id => str "status " ++ component_id_display id
  | WorkspaceCommand.GetFocus => str "get_focus"
  | WorkspaceCommand.SettingsList => str "settings list"
  | WorkspaceCommand.SettingsSet key value => str "settings set " ++ key ++ str " " ++ value
  | WorkspaceCommand.SettingsReset key => str "settings reset " ++ key
  | WorkspaceCommand.SettingsSave => str "settings save"
  | WorkspaceCommand.OpenFilePicker => str "open file"
  | WorkspaceCommand.RecentFiles => str "recent"
  | WorkspaceCommand.Help category =>
      if decide (category = HelpCategory.Overview) then str "help"
      else str "help " ++ str (HelpCategory.display category)
  | WorkspaceCommand.BootProfileShow => str "boot profile show"
  | WorkspaceCommand.BootProfileSet profile =>
      str "boot profile set " ++ to_lowercase (str (BootProfile.name profile))
  | WorkspaceCommand.BootProfileSave => str "boot profile save"
  end.
End parse.

(** ** At the prompt ([workspace_status.rs]) *)

(* services_workspace_manager/src/workspace_status.rs:440-483 validate_command (words) *)
Definition validate_words (parts : list Str.t) : PromptValidation.t :=
  match parts with
  | [] => PromptValidation.ValidPrefix
  | cmd :: args =>
      if decide (cmd = str "open") then validate_open_invocation parts
      else if decide (cmd = str "list" ∨ cmd = str "next" ∨ cmd = str "prev" ∨ cmd = str "previous") then
        match args with [] => PromptValidation.ValidComplete | _ => PromptValidation.Invalid end
      else if decide (cmd = str "close" ∨ cmd = str "focus" ∨ cmd = str "status")
      then validate_component_id_invocation parts
      else if decide (cmd = str "help") then validate_help_invocation parts
      else if decide (cmd = str "recent") then
        match helper_command_by_alias parts with
        | Some helper =>
            if decide (HelperCommandSpec.kind helper = HelperCommandKind.RecentFiles)
            then PromptValidation.ValidComplete else PromptValidation.Invalid
        | None => PromptValidation.Invalid
        end
      else if is_known_command_prefix cmd then PromptValidation.ValidPrefix
      else PromptValidation.Invalid
  end.
(* services_workspace_manager/src/workspace_status.rs:428-438 validate_command *)
Definition validate_command (input : Str.t) : PromptValidation.t :=
  let input_trimmed := Str.trim input in
  match input_trimmed with
  | [] => PromptValidation.ValidPrefix
  | _ => validate_words (split_whitespace input_trimmed)
  end.

Module CommandSuggestion.
(* services_workspace_manager/src/workspace_status.rs:218-233 CommandSuggestion *)
Record t := new { pattern : Str.t; description : Str.t }.
(* services_workspace_manager/src/workspace_status.rs:237-239 CommandSuggestion::format *)
Definition format (s : t) : Str.t := str "  " ++ pattern s ++ str "  " ++ dash ++ description s.
End CommandSuggestion.

(* services_workspace_manager/src/workspace_status.rs:292-298 push_suggestions *)
Definition push_suggestions (specs : list SuggestionSpec.t) (into : list CommandSuggestion.t) :
    list CommandSuggestion.t :=
  into ++ ((λ spec, CommandSuggestion.new (str (SuggestionSpec.pattern spec)) (str (SuggestionSpec.description spec)))
             <$> specs).
(* services_workspace_manager/src/workspace_status.rs:300-305 push_prompt_suggestion *)
Definition push_prompt_suggestion (into : list CommandSuggestion.t) (spec : PromptSuggestionSpec.t) :
    list CommandSuggestion.t :=
  if existsb (λ existing, bool_decide (CommandSuggestion.pattern existing = PromptSuggestionSpec.pattern spec)) into
  then into
  else into ++ [CommandSuggestion.new (PromptSuggestionSpec.pattern spec) (str (PromptSuggestionSpec.description spec))].
(* services_workspace_manager/src/workspace_status.rs:307-314 push_prompt_suggestions *)
Definition push_prompt_suggestions (specs : list PromptSuggestionSpec.t) (into : list CommandSuggestion.t) :
    list CommandSuggestion.t :=
  foldl push_prompt_suggestion into specs.
(* services_workspace_manager/src/workspace_status.rs:244-290 generate_suggestions *)
Definition generate_suggestions `{Lowercase} (input : Str.t) : list CommandSuggestion.t :=
  let input_lower := to_lowercase (Str.trim input) in
  match input_lower with
  | [] =>
      let suggestions := push_suggestions DEFAULT_SUGGESTIONS [] in
      match non_launch_prompt_suggestion_by_id "list" with
      | Some spec => push_prompt_suggestion suggestions spec
      | None => suggestions
      end
  | _ =>
      let related (word prefix : string) :=
        Str.starts_with input_lower (str word) || Str.starts_with (str prefix) input_lower in
      let suggestions := [] in
      let suggestions :=
        if related "open" "op" then push_suggestions OPEN_PREFIX_SUGGESTIONS suggestions else suggestions in
      let suggestions :=
        if related "help" "he" || bool_decide (input_lower = str "?")
        then push_suggestions HELP_PREFIX_SUGGESTIONS suggestions else suggestions in
      let suggestions :=
        if related "recent" "rec" then push_suggestions RECENT_PREFIX_SUGGESTIONS suggestions else suggestions in
      push_prompt_suggestions
        (filter (λ spec, PromptSuggestionSpec.pattern spec ∉
                   str <$> ["help"; "help workspace"; "help editor"; "help keys"; "help system"])
           (non_launch_prefix_suggestions input_lower))
        suggestions
  end.

Module FsStatus.
(* services_workspace_manager/src/workspace_status.rs:118-126 FsStatus *)
Inductive t := Ok | ReadOnly | Unavailable.
End FsStatus.

Module WorkspaceStatus.
(* services_workspace_manager/src/workspace_status.rs:27-39 WorkspaceStatus *)
Record t := mk {
  active_editor : option Str.t;
  has_unsaved_changes : bool;
  fs_status : FsStatus.t;
  active_jobs : N;
  last_action : option Str.t
}.
#[global] Instance rebuild_t : Rebuild t := λ s,
  mk (active_editor s) (has_unsaved_changes s) (fs_status s) (active_jobs s) (last_action s).
(* services_workspace_manager/src/workspace_status.rs:43-51 WorkspaceStatus::new *)
Definition new : t := mk None false FsStatus.Ok 0 None.
(* services_workspace_manager/src/workspace_status.rs:58-88 WorkspaceStatus::format_status_strip *)
Definition format_status_strip (s : t) : Str.t :=
  join_with dash
    ([str "Workspace";
      match active_editor s with
      | Some filename =>
          str "Editor: " ++ filename ++ str " | " ++ str (if has_unsaved_changes s then "Unsaved" else "Saved")
      | None => str "No editors"
      end;
      if (0 <? active_jobs s)%N then str "Jobs: " ++ str (pretty (active_jobs s)) else str "Idle"]
     ++ match fs_status s with
        | FsStatus.Ok => []
        | FsStatus.ReadOnly => [str "FS: Read-only"]
        | FsStatus.Unavailable => [str "FS: Unavailable"]
        end).
(* services_workspace_manager/src/workspace_status.rs:91-98 WorkspaceStatus::format_status_strip_with_action *)
Definition format_status_strip_with_action (s : t) : Str.t :=
  match last_action s with
  | Some action => format_status_strip s ++ str "  [ " ++ action ++ str " ]"
  | None => format_status_strip s
  end.
(* services_workspace_manager/src/workspace_status.rs:101-103 WorkspaceStatus::clear_last_action *)
Definition clear_last_action (s : t) : t := s <| last_action := None |>.
(* services_workspace_manager/src/workspace_status.rs:106-108 WorkspaceStatus::set_last_action *)
Definition set_last_action (action : Str.t) (s : t) : t := s <| last_action := Some action |>.
End WorkspaceStatus.

Module RecentHistory.
(* services_workspace_manager/src/workspace_status.rs:24-24 MAX_HISTORY_SIZE *)
Definition MAX_HISTORY_SIZE : nat := 20.
(* services_workspace_manager/src/workspace_status.rs:129-137 RecentHistory *)
Record t := mk { recent_files : list Str.t; recent_commands : list Str.t; recent_errors : list Str.t }.
#[global] Instance rebuild_t : Rebuild t := λ h, mk (recent_files h) (recent_commands h) (recent_errors h).
(* services_workspace_manager/src/workspace_status.rs:141-147 RecentHistory::new *)
Definition new : t := mk [] [] [].
(** To the front without duplicates, and the oldest dropped. *)
(* services_workspace_manager/src/workspace_status.rs:150-161 RecentHistory::add_file *)
Definition remember (x : Str.t) (l : list Str.t) : list Str.t :=
  take MAX_HISTORY_SIZE (x :: filter (λ y, y ≠ x) l).
(* services_workspace_manager/src/workspace_status.rs:150-161 RecentHistory::add_file *)
Definition add_file (file : Str.t) (h : t) : t := h <| recent_files ::= remember file |>.
(* services_workspace_manager/src/workspace_status.rs:164-175 RecentHistory::add_command *)
Definition add_command (command : Str.t) (h : t) : t := h <| recent_commands ::= remember command |>.
(* services_workspace_manager/src/workspace_status.rs:178-186 RecentHistory::add_error *)
Definition add_error (error : Str.t) (h : t) : t :=
  h <| recent_errors ::= λ l, take MAX_HISTORY_SIZE (error :: l) |>.
(* services_workspace_manager/src/workspace_status.rs:204-208 RecentHistory::clear *)
Definition clear (h : t) : t := mk [] [] [].
End RecentHistory.

Module ActionableError.
(* services_workspace_manager/src/workspace_status.rs:342-357 ActionableError *)
Record t := new { message : Str.t; actions : list Str.t }.
(* services_workspace_manager/src/workspace_status.rs:360-362 ActionableError::with_retry_help *)
Definition with_retry_help (message : Str.t) : t := new message [str "Retry"; str "Help"].
(* services_workspace_manager/src/workspace_status.rs:365-367 ActionableError::with_help *)
Definition with_help (message : Str.t) : t := new message [str "Help"].
(* services_workspace_manager/src/workspace_status.rs:371-373 ActionableError::format *)
Definition format (e : t) : Str.t := message e ++ dash ++ join_with (str " | ") (actions e).
End ActionableError.

Module ContextBreadcrumbs.
(* services_workspace_manager/src/workspace_status.rs:377-381 ContextBreadcrumbs *)
Record t := mk { parts : list Str.t }.
(* services_workspace_manager/src/workspace_status.rs:385-389 ContextBreadcrumbs::new *)
Definition new : t := mk [str "PANDA"; str "ROOT"].
(* services_workspace_manager/src/workspace_status.rs:392-394 ContextBreadcrumbs::push *)
Definition push (part : Str.t) (b : t) : t := mk (parts b ++ [part]).
(* services_workspace_manager/src/workspace_status.rs:397-401 ContextBreadcrumbs::pop *)
Definition pop (b : t) : t :=
  if 2 <? length (parts b) then mk (take (pred (length (parts b))) (parts b)) else b.
(* services_workspace_manager/src/workspace_status.rs:404-406 ContextBreadcrumbs::clear *)
Definition clear (b : t) : t := mk (take 2 (parts b)).
(* services_workspace_manager/src/workspace_status.rs:410-412 ContextBreadcrumbs::format *)
Definition format (b : t) : Str.t := join_with (str " > ") (parts b).
(* services_workspace_manager/src/workspace_status.rs:415-417 ContextBreadcrumbs::set_parts *)
Definition set_parts (parts : list Str.t) (b : t) : t := mk parts.
End ContextBreadcrumbs.

(** ** Help ([help.rs]) *)

(** [{:<34}]: padded to 34 characters. *)
Definition pad34 (s : Str.t) : Str.t := s ++ replicate (34 - length s) 32%N.
(* services_workspace_manager/src/help.rs:187-189 format_help_line *)
Definition format_help_line (pattern : Str.t) (description : string) : Str.t :=
  pad34 pattern ++ dash ++ str description.
(* services_workspace_manager/src/help.rs:191-199 topic_description *)
Definition topic_description (topic : HelpCategory.t) : string :=
  match topic with
  | HelpCategory.Overview => "Workspace overview"
  | HelpCategory.Workspace => "Workspace management commands"
  | HelpCategory.Editor => "Editor commands and operations"
  | HelpCategory.Keys => "Keyboard shortcuts reference"
  | HelpCategory.System => "System control commands"
  end.
(** The last line of every help text. *)
Definition tip : Str.t := 10%N :: str "Tip: Press Ctrl+P to find commands faster".
(** Lines, each with its line feed. *)
Definition with_newlines (lines : list Str.t) : Str.t := lines ≫= λ l, l ++ [10%N].
(** A line [- key — meaning]. *)
Definition entry (key meaning : string) : Str.t := str "- " ++ str key ++ dash ++ str meaning.

Module Help.
(* services_workspace_manager/src/help.rs:30-37 HelpCategory::parse *)
Definition parse (s : Str.t) : option HelpCategory.t :=
  let token := Str.trim s in
  match token with [] => parse_help_topic None | _ => parse_help_topic (Some token) end.
(* services_workspace_manager/src/help.rs:50-67 HelpCategory::overview_help *)
Definition overview_help : Str.t :=
  with_newlines [str "PandaGen OS Workspace"; []; str "Available help topics:"]
  ++ (HELP_TOPIC_SPECS ≫= λ topic,
        match HelpTopicSpec.aliases topic with
        | primary_alias :: _ =>
            str "- help " ++ str primary_alias ++ str " " ++ dash
            ++ str (topic_description (HelpTopicSpec.topic topic)) ++ [10%N]
        | [] => []
        end)
  ++ str "- " ++ help_usage_pattern ++ str " " ++ dash ++ str "Show help by topic" ++ [10%N] ++ tip.
(* services_workspace_manager/src/help.rs:74-80 HelpCategory::workspace_help (launch pattern) *)
Definition launch_pattern (spec : LaunchCommandSpec.t) : Str.t :=
  match LaunchCommandSpec.required_usage spec with
  | Some usage => without_usage usage
  | None =>
      if decide (LaunchCommandSpec.token spec = "editor") then str "open editor <path>"
      else str "open " ++ str (LaunchCommandSpec.token spec)
  end.
(* services_workspace_manager/src/help.rs:69-127 HelpCategory::workspace_help *)
Definition workspace_help : Str.t :=
  let lines :=
    ((λ spec, format_help_line (launch_pattern spec)
                (PaletteDescriptorSpec.description (LaunchCommandSpec.palette spec))) <$> LAUNCH_COMMAND_SPECS)
    ++ ((λ helper, format_help_line
                     (join_with (str " | ")
                        ((λ parts, join_with [32%N] (str <$> parts)) <$> HelperCommandSpec.aliases helper))
                     (PaletteDescriptorSpec.description (HelperCommandSpec.palette helper))) <$> HELPER_COMMAND_SPECS)
    ++ omap (λ spec, (λ suggestion, format_help_line (PromptSuggestionSpec.pattern suggestion)
                                      (PaletteDescriptorSpec.description spec))
                     <$> non_launch_prompt_suggestion_by_id (PaletteDescriptorSpec.id spec))
         (filter (λ spec, PaletteDescriptorSpec.category spec = "Workspace" ∧
                          PaletteDescriptorSpec.id spec ∈ ["list"; "focus_next"; "focus_prev"])
            NON_LAUNCH_PALETTE_SPECS)
    ++ ((λ spec,
           let pattern := match component_id_usage_pattern (str (ComponentIdCommandSpec.token spec)) with
                          | Some p => p | None => str (ComponentIdCommandSpec.usage spec) end in
           let description :=
             match find_in (λ entry, bool_decide (PaletteDescriptorSpec.id entry = ComponentIdCommandSpec.token spec))
                     NON_LAUNCH_PALETTE_SPECS with
             | Some entry => PaletteDescriptorSpec.description entry
             | None => "Target a component"
             end in
           format_help_line pattern description) <$> COMPONENT_ID_COMMAND_SPECS)
    ++ [format_help_line help_usage_pattern "Show help by topic"] in
  str "Workspace Commands" ++ [10%N; 10%N] ++ with_newlines lines ++ tip.
(* services_workspace_manager/src/help.rs:129-141 HelpCategory::editor_help *)
Definition editor_help : Str.t :=
  with_newlines
    [ str "Editor Commands"; []; str "The editor is vi-like with familiar keybindings:";
      entry "i       " "Enter insert mode"; entry "ESC     " "Return to normal mode";
      entry ":w      " "Save file"; entry ":q      " "Quit editor";
      entry "h,j,k,l " "Navigate left, down, up, right" ] ++ tip.
(* services_workspace_manager/src/help.rs:143-158 HelpCategory::keys_help *)
Definition keys_help : Str.t :=
  with_newlines
    [ str "Keyboard Shortcuts"; []; str "Global shortcuts:"; entry "Ctrl+P      " "Open command palette";
      entry "Alt+Tab     " "Switch between components"; entry "Ctrl+S      " "Save current file";
      entry "Ctrl+Q      " "Quit workspace"; []; str "Focus navigation:";
      entry "Ctrl+1      " "Focus top component"; entry "Ctrl+2      " "Focus bottom component" ] ++ tip.
(* services_workspace_manager/src/help.rs:160-184 HelpCategory::system_help *)
Definition system_help : Str.t :=
  let lines :=
    ((λ spec, format_help_line
                match PaletteDescriptorSpec.prompt_pattern spec with
                | Some p => trim_end (str p) | None => str (PaletteDescriptorSpec.id spec) end
                (PaletteDescriptorSpec.description spec))
       <$> filter (λ spec, PaletteDescriptorSpec.category spec = "System" ∧ PaletteDescriptorSpec.id spec ≠ "help_system")
             NON_LAUNCH_PALETTE_SPECS)
    ++ [format_help_line help_usage_pattern "Show help by topic"] in
  str "System Commands" ++ [10%N; 10%N] ++ with_newlines lines ++ tip.
(* services_workspace_manager/src/help.rs:40-48 HelpCategory::content *)
Definition content (c : HelpCategory.t) : Str.t :=
  match c with
  | HelpCategory.Overview => overview_help
  | HelpCategory.Workspace => workspace_help
  | HelpCategory.Editor => editor_help
  | HelpCategory.Keys => keys_help
  | HelpCategory.System => system_help
  end.
End Help.

(** ** The registry of palette commands ([command_registry.rs]) *)

(* services_workspace_manager/src/command_registry.rs:29-50 register_workspace_surface_command *)
Definition register_workspace_surface_command (palette : CommandPalette.t) (spec : PaletteDescriptorSpec.t) :
    CommandPalette.t :=
  let descriptor :=
    CommandDescriptor.with_category (str (PaletteDescriptorSpec.category spec))
      (CommandDescriptor.new (str (PaletteDescriptorSpec.id spec)) (str (PaletteDescriptorSpec.name spec))
         (str (PaletteDescriptorSpec.description spec)) (str <$> PaletteDescriptorSpec.tags spec)) in
  let descriptor :=
    match PaletteDescriptorSpec.keybinding spec with
    | Some k => CommandDescriptor.with_keybinding (str k) descriptor | None => descriptor end in
  let descriptor :=
    if PaletteDescriptorSpec.requires_args spec then CommandDescriptor.with_required_args descriptor else descriptor in
  let descriptor :=
    match PaletteDescriptorSpec.prompt_pattern spec with
    | Some p => CommandDescriptor.with_prompt_pattern (str p) descriptor | None => descriptor end in
  let response := str (PaletteDescriptorSpec.name spec) ++ str " command - handled by workspace" in
  CommandPalette.register_command descriptor (λ _, Ok response) palette.
(* services_workspace_manager/src/command_registry.rs:12-27 build_command_registry *)
Definition build_command_registry : CommandPalette.t :=
  foldl register_workspace_surface_command CommandPalette.new
    ((LaunchCommandSpec.palette <$> LAUNCH_COMMAND_SPECS) ++ (HelperCommandSpec.palette <$> HELPER_COMMAND_SPECS)
     ++ NON_LAUNCH_PALETTE_SPECS).
