(* ===== verification/CommandsProps.v ===== *)
(** * Theorems about the command surface

    Parsing reads back what is printed, the prompt's validation agrees with the parser, the
    parser returns on every input, and the recent lists hold the latest distinct entries. *)

From S2P Require Import Prelude CoreTypes Editor Text Layout Palette Commands.
Open Scope string_scope.
Open Scope list_scope.
Open Scope nat_scope.

#[local] Notation str := Str.of_string.

Module ParseSpec.
Section parse.
Context `{UuidText} `{Lowercase}.

(** Commands whose words are words, and that have a spelling. *)
Definition printable (c : WorkspaceCommand.t) : Prop :=
  match c with
  | WorkspaceCommand.Open _ _ | WorkspaceCommand.GetFocus => False
  | WorkspaceCommand.SettingsSet key value =>
      word key ∧ ∃ words, words ≠ [] ∧ Forall word words ∧ value = join_with [32%N] words
  | WorkspaceCommand.SettingsReset key => word key
  | _ => True
  end.

Lemma helper_other cmd args :
  cmd ≠ str "recent" → cmd ≠ str "open" → helper_command_by_alias (cmd :: args) = None.
Proof.
  intros Hr Ho. unfold helper_command_by_alias, find_in, HELPER_COMMAND_SPECS.
  repeat match goal with
  | |- context [bool_decide (?a = ?b)] =>
      rewrite (bool_decide_eq_false_2 (a = b)) by (intros E; apply (f_equal head) in E; simpl in E; congruence)
  | _ => progress cbn [List.find existsb HelperCommandSpec.aliases orb]
  end. done.
Qed.

(** The words of a printed command. *)
Definition words_of (c : WorkspaceCommand.t) : list Str.t :=
  match c with
  | WorkspaceCommand.Focus id => [str "focus"; component_id_display id]
  | WorkspaceCommand.Close id => [str "close"; component_id_display id]
  | WorkspaceCommand.Status id => [str "status"; component_id_display id]
  | WorkspaceCommand.SettingsReset key => [str "settings"; str "reset"; key]
  | WorkspaceCommand.BootProfileSet p => [str "boot"; str "profile"; str "set"; to_lowercase (str (BootProfile.name p))]
  | _ => split_whitespace (format_command c)
  end.

Lemma component_id_word id : word (component_id_display id).
Proof.
  destruct (uuid_display_word (ComponentId.uuid id)) as [_ Hw]. split; [done|].
  apply Forall_app. split; [|done]. by repeat constructor.
Qed.

Lemma boot_name_lower p : to_lowercase (str (BootProfile.name p)) =
  match p with BootProfile.Workspace => str "workspace" | BootProfile.Editor => str "editor" | BootProfile.Kiosk => str "kiosk" end.
Proof. destruct p; rewrite to_lowercase_ascii; try done; by repeat constructor. Qed.

Lemma boot_profile_parse p : BootProfile.parse (to_lowercase (str (BootProfile.name p))) = Some p.
Proof.
  rewrite boot_name_lower. unfold BootProfile.parse.
  destruct p; rewrite to_lowercase_ascii; try done; by repeat constructor.
Qed.

Lemma parse_id_command (cmd : string) (mk : ComponentId.t → WorkspaceCommand.t) id :
  (cmd, mk) ∈ [("focus", WorkspaceCommand.Focus); ("close", WorkspaceCommand.Close); ("status", WorkspaceCommand.Status)] →
  parse_command (str cmd ++ str " " ++ component_id_display id) = accept (mk id).
Proof.
  intros Hin. unfold parse_command.
  change (str cmd ++ str " " ++ component_id_display id) with (join_with [32%N] [str cmd; component_id_display id]).
  assert (word (str cmd)) as Hc.
  { set_unfold in Hin. destruct_or?; simplify_eq; split; try done; by repeat constructor. }
  rewrite split_join by (apply Forall_cons_2; [done|apply Forall_singleton, component_id_word]).
  assert (parse_component_id_surface_command (str cmd) [component_id_display id] = accept (mk id)) as Hp.
  { unfold parse_component_id_surface_command.
    assert (drop 5 (component_id_display id) = str (uuid_to_string (ComponentId.uuid id))) as Hd by done.
    assert (Str.starts_with (str "comp:") (component_id_display id) = true) as Hs by done.
    rewrite Hs, Hd, parse_uuid_display. destruct id as [u]. set_unfold in Hin. by destruct_or?; simplify_eq. }
  unfold parse_words. set_unfold in Hin. destruct_or?; simplify_eq; rewrite helper_other by done; exact Hp.
Qed.

(** Parsing reads back what is printed into the history: for every command but [open] and the
    query for the focus, with keys and values made of words, parsing the printed text gives the
    command again. *)
Theorem printed_commands_parse c : printable c → parse_command (format_command c) = accept c.
Proof.
  intros Hc. destruct c as [ty args| |id| | |id|id| | |key value|key| | | |cat| |profile|]; simpl in Hc; try done.
  - by apply (parse_id_command "focus" WorkspaceCommand.Focus); set_solver.
  - by apply (parse_id_command "close" WorkspaceCommand.Close); set_solver.
  - by apply (parse_id_command "status" WorkspaceCommand.Status); set_solver.
  - destruct Hc as (Hk & words & Hne & Hw & ->). destruct words as [|w words]; [done|]. unfold parse_command.
    change (format_command (WorkspaceCommand.SettingsSet key (join_with [32%N] (w :: words)))) with
      (join_with [32%N] (str "settings" :: str "set" :: key :: w :: words)).
    rewrite split_join; [unfold parse_words; rewrite helper_other by done; reflexivity|].
    repeat (apply Forall_cons_2; [first [done|by split; repeat constructor]|]). done.
  - unfold parse_command. change (format_command (WorkspaceCommand.SettingsReset key)) with
      (join_with [32%N] [str "settings"; str "reset"; key]).
    rewrite split_join; [unfold parse_words; rewrite helper_other by done; reflexivity|].
    repeat (apply Forall_cons_2; [first [done|by split; repeat constructor]|]). done.
  - by destruct cat.
  - unfold parse_command, format_command.
    change (str "boot profile set " ++ to_lowercase (str (BootProfile.name profile))) with
      (join_with [32%N] [str "boot"; str "profile"; str "set"; to_lowercase (str (BootProfile.name profile))]).
    rewrite split_join.
    + unfold parse_words. rewrite helper_other by done. simpl. by rewrite boot_profile_parse.
    + rewrite boot_name_lower. repeat (apply Forall_cons_2; [by split; repeat constructor|]).
      apply Forall_singleton. by destruct profile; split; repeat constructor.
Qed.

(** A printed [open] does not parse: the printed type is not the token of the command. *)
Lemma printed_open_is_rejected ty args :
  Forall word args →
  parse_command (format_command (WorkspaceCommand.Open ty args)) =
  reject (str "Unknown component type: " ++ str (ComponentType.display ty)).
Proof.
  intros Hw. unfold parse_command.
  assert (format_command (WorkspaceCommand.Open ty args) =
    join_with [32%N] (str "open" :: str (ComponentType.display ty) :: args)) as ->.
  { destruct args as [|a args]; [by destruct ty|]. simpl. by destruct ty. }
  rewrite split_join.
  - destruct ty; done.
  - repeat (apply Forall_cons_2; [by destruct ty; split; repeat constructor|]). done.
Qed.

(** Parsing returns a command or an error on every input; the branch the source marks
    unreachable is never reached. *)
Theorem parser_always_returns input : ∃ r, parse_command input = Return r.
Proof.
  assert (∀ parts, ∃ r, parse_words parts = Return r) as Hp; [|apply Hp].
  intros [|cmd args]; [by eexists|]. unfold parse_words, accept, reject.
  destruct (helper_command_by_alias _); [by eexists|].
  repeat (case_decide; [try by eexists|]); try by eexists.
  - unfold parse_open, accept, reject. repeat case_match; by eexists.
  - unfold parse_component_id_surface_command, accept, reject.
    destruct (component_id_command_by_token cmd) as [spec|] eqn:E; [|by eexists].
    destruct args as [|id [|? ?]]; try by eexists. destruct (negb _); [by eexists|].
    destruct (parse_uuid _); [|by eexists]. repeat (case_decide; [by eexists|]).
    exfalso. unfold component_id_command_by_token, find_in in E. apply List.find_some in E as [Hin _].
    simpl in Hin. naive_solver.
  - unfold parse_help, accept, reject. repeat case_match; by eexists.
  - unfold parse_settings, accept, reject. repeat case_match; by eexists.
  - unfold parse_boot, accept, reject. repeat case_match; by eexists.
Qed.
End parse.
End ParseSpec.

Module PromptSpec.
Import ParseSpec.
Section prompt.
Context `{UuidText} `{Lowercase}.

Lemma words_from_blank acc w :
  Forall (λ c, Str.is_whitespace c = true) w → words_from acc w = words_from acc [].
Proof.
  intros Hw. revert acc. induction Hw as [|c w Hc Hw IH]; intros acc; [done|]. simpl. rewrite Hc.
  rewrite IH. by destruct acc.
Qed.
Lemma words_from_blank_end acc s w :
  Forall (λ c, Str.is_whitespace c = true) w → words_from acc (s ++ w) = words_from acc s.
Proof.
  intros Hw. revert acc. induction s as [|c s IH]; intros acc; simpl; [by apply words_from_blank|].
  destruct (Str.is_whitespace c), acc; by rewrite ?IH.
Qed.
Lemma trim_start_split s : ∃ w, s = w ++ Str.trim_start s ∧ Forall (λ c, Str.is_whitespace c = true) w.
Proof.
  induction s as [|c s (w & E & Hw)]; simpl; [by exists []|]. destruct (Str.is_whitespace c) eqn:Ec.
  - exists (c :: w). simpl. rewrite <-E. split; [done|by constructor].
  - by exists [].
Qed.
Lemma words_trim s : split_whitespace (Str.trim s) = split_whitespace s.
Proof.
  assert (∀ t, split_whitespace (Str.trim_start t) = split_whitespace t) as Hstart.
  { induction t as [|c t IH]; [done|]. unfold split_whitespace in *. simpl. destruct (Str.is_whitespace c) eqn:E; [done|].
    simpl. by rewrite E. }
  unfold Str.trim. etrans; [|apply Hstart]. set (t := Str.trim_start s).
  destruct (trim_start_split (reverse t)) as (w & E & Hw). apply (f_equal reverse) in E.
  rewrite reverse_involutive, reverse_app in E. rewrite E at 2. unfold split_whitespace.
  symmetry. apply words_from_blank_end. by apply Forall_reverse.
Qed.

Lemma validate_command_words input : validate_command input = validate_words (split_whitespace input).
Proof.
  unfold validate_command. cbv zeta. rewrite <-(words_trim input). by destruct (Str.trim input).
Qed.

(** The commands the prompt does not know. *)
Definition unknown_to_prompt (parts : list Str.t) : Prop :=
  match parts with
  | cmd :: args => cmd = str "settings" ∨ cmd = str "boot" ∨
      ((cmd = str "list" ∨ cmd = str "next" ∨ cmd = str "prev" ∨ cmd = str "previous") ∧ args ≠ [])
  | [] => False
  end.

(** The command is one of three, its argument starts as an identifier and is none. *)
Definition bad_identifier (parts : list Str.t) : Prop :=
  ∃ cmd id, parts = [cmd; id] ∧ (cmd = str "focus" ∨ cmd = str "close" ∨ cmd = str "status") ∧
    Str.starts_with (str "comp:") id = true ∧ parse_uuid (drop 5 id) = None.

Definition accepted (parts : list Str.t) : Prop := ∃ c, parse_words parts = accept c.

Lemma prompt_open args :
  validate_open_invocation (str "open" :: args) = PromptValidation.ValidComplete ↔ accepted (str "open" :: args).
Proof.
  unfold accepted, parse_words, validate_open_invocation. rewrite (bool_decide_eq_true_2 (str "open" = str "open")) by done.
  cbn [negb]. destruct args as [|token rest].
  { split; [done|]. by intros [c Hc]. }
  destruct (helper_command_by_alias _); [split; [by eexists|done]|]. rewrite decide_True by done.
  unfold parse_open. destruct (launch_command_by_token token) as [spec|].
  - destruct (LaunchCommandSpec.required_usage spec), rest; split; try done; try (by eexists); by intros [].
  - split; [done|]. intros [c Hc]. by destruct (helper_command_by_open_token token).
Qed.

Lemma prompt_id cmd args :
  cmd = str "focus" ∨ cmd = str "close" ∨ cmd = str "status" →
  validate_component_id_invocation (cmd :: args) = PromptValidation.ValidComplete ↔
  accepted (cmd :: args) ∨ bad_identifier (cmd :: args).
Proof.
  intros Hcmd. assert (is_Some (component_id_command_by_token cmd)) as [spec Hspec] by (destruct_or!; subst; by eexists).
  assert (parse_words (cmd :: args) = parse_component_id_surface_command cmd args) as Hp.
  { unfold parse_words. rewrite helper_other by (destruct_or!; by subst). destruct_or!; by subst. }
  unfold accepted, validate_component_id_invocation. rewrite Hp. unfold parse_component_id_surface_command. rewrite Hspec.
  destruct args as [|id [|x args]].
  - split; [done|]. by intros [[c Hc]|(? & ? & ? & _)].
  - destruct (Str.starts_with (str "comp:") id) eqn:Es; simpl.
    + split; [|done]. intros _. destruct (parse_uuid (drop 5 id)) as [u|] eqn:Eu; [|right; by exists cmd, id].
      left. repeat (case_decide; [by eexists|]). exfalso.
      apply List.find_some in Hspec as [Hin _]. simpl in Hin. naive_solver.
    + split; [done|]. intros [[c Hc]|(? & ? & [= <- <-] & _ & Hs & _)]; [done|congruence].
  - split; [done|]. by intros [[c Hc]|(? & ? & ? & _)].
Qed.

Lemma prompt_help args :
  validate_help_invocation (str "help" :: args) = PromptValidation.ValidComplete ↔ accepted (str "help" :: args).
Proof.
  unfold accepted, parse_words. rewrite helper_other by done.
  change (validate_help_invocation (str "help" :: args) = PromptValidation.ValidComplete ↔ ∃ c, parse_help args = accept c).
  unfold validate_help_invocation, parse_help. rewrite bool_decide_eq_true_2 by done. cbn [negb].
  destruct args as [|t [|u args]]; [split; [by eexists|done]| |split; [done|by intros []]].
  destruct (parse_help_topic (Some t)); split; try done; try (by eexists); by intros [].
Qed.

(** The prompt marks an input as a complete command exactly when the parser accepts it, with
    three differences: it knows no settings or boot commands, wants [list], [next] and [prev]
    without arguments, and does not look into component identifiers. *)
Theorem prompt_agrees_with_parser input :
  validate_command input = PromptValidation.ValidComplete ↔
  ((∃ c, parse_command input = accept c) ∧ ¬ unknown_to_prompt (split_whitespace input))
  ∨ bad_identifier (split_whitespace input).
Proof.
  rewrite validate_command_words. unfold parse_command. generalize (split_whitespace input) as parts.
  intros [|cmd args].
  { split; [done|]. intros [[[c Hc] _]|(? & ? & ? & _)]; done. }
  change (∃ c, parse_words (cmd :: args) = accept c) with (accepted (cmd :: args)).
  unfold validate_words. case_decide as Ho.
  { subst. rewrite prompt_open. split.
    - intros Ha. left. split; [done|]. unfold unknown_to_prompt. intros Hu. destruct_or?; try done. by destruct_and!; destruct_or!.
    - intros [[? _]|(? & ? & [= <- _] & Hc & _)]; [done|]. by destruct_or!. }
  case_decide as Hl.
  { destruct args as [|a args].
    - split; [|done]. intros _. left. split; [|unfold unknown_to_prompt; intros Hu; destruct_or?; subst; try done; by destruct_and!].
      unfold accepted, parse_words. destruct_or!; subst; by eexists.
    - split; [done|]. intros [[_ Hu]|(? & ? & [= <- _ _] & Hc & _)].
      + destruct Hu. right. right. by split.
      + destruct_or!; by subst. }
  case_decide as Hi.
  { rewrite prompt_id by tauto. split.
    - intros [Ha|Hb]; [left|by right]. split; [done|]. unfold unknown_to_prompt. intros Hu.
      destruct Hu as [->|[->|[Hu _]]]; [destruct_or!; done..|]. tauto.
    - intros [[? _]|?]; auto. }
  case_decide as Hh.
  { subst. rewrite prompt_help. split.
    - intros Ha. left. split; [done|]. unfold unknown_to_prompt. intros Hu. destruct_or?; try done. tauto.
    - intros [[? _]|(? & ? & [= <- _] & Hc & _)]; [done|]. by destruct_or!. }
  assert (¬ bad_identifier (cmd :: args)) as Hnb by (intros (? & ? & [= <- _] & Hc & _); tauto).
  case_decide as Hr.
  { subst. split.
    - intros Hv. left. split; [|unfold unknown_to_prompt; intros Hu; destruct_or?; try done; tauto].
      unfold accepted, parse_words. destruct (helper_command_by_alias _); [by eexists|done].
    - intros [[[c Hc] _]|?]; [|done]. unfold parse_words in Hc.
      destruct (helper_command_by_alias (str "recent" :: args)) as [h|] eqn:E; [|done].
      rewrite decide_True; [done|]. apply List.find_some in E as [Hin Ha]. simpl in Hin.
      destruct Hin as [<-|[<-|[]]]; [done|]. apply existsb_exists in Ha as (l & Hin & Heq%bool_decide_eq_true).
      simpl in Hin. destruct Hin as [<-|[<-|[]]]; by apply (f_equal head) in Heq. }
  split; [by destruct (is_known_command_prefix cmd)|]. intros [[[c Hc] Hu]|?]; [|done].
  exfalso. unfold parse_words in Hc. rewrite helper_other in Hc by done.
  rewrite !decide_False in Hc by tauto. unfold unknown_to_prompt in Hu.
  case_decide; [tauto|]. case_decide; [tauto|]. done.
Qed.
End prompt.
End PromptSpec.

Module HistorySpec.
Import RecentHistory.

(** The first occurrence of each element. *)
Fixpoint distinct (l : list Str.t) : list Str.t :=
  match l with
  | [] => []
  | x :: l => x :: filter (λ y, y ≠ x) (distinct l)
  end.

Lemma distinct_NoDup l : NoDup (distinct l).
Proof.
  induction l as [|x l IH]; simpl; [constructor|]. constructor; [|by apply NoDup_filter].
  rewrite list_elem_of_filter. naive_solver.
Qed.

Lemma take_filter_ne (x : Str.t) n (l : list Str.t) :
  NoDup l → take n (filter (λ y, y ≠ x) (take (S n) l)) = take n (filter (λ y, y ≠ x) l).
Proof.
  revert n. induction l as [|y l IH]; intros n Hnd; [done|]. apply NoDup_cons in Hnd as [Hy Hnd].
  rewrite firstn_cons, !filter_cons. destruct (decide (y ≠ x)) as [Hne|Heq%dec_stable].
  - destruct n as [|n]; [done|]. simpl. f_equal. by apply IH.
  - subst y. rewrite (filter_keeps_all _ l) by (intros z Hz ->; done).
    rewrite filter_keeps_all; [by rewrite take_take, Nat.min_l by lia|]. intros z (i & Hz & _)%elem_of_take ->.
    by apply list_elem_of_lookup_2 in Hz.
Qed.

Lemma remember_distinct l : foldl (λ r x, remember x r) [] l = take MAX_HISTORY_SIZE (distinct (reverse l)).
Proof.
  induction l as [|x l IH] using rev_ind; [done|].
  rewrite foldl_app, reverse_snoc. simpl. rewrite IH. unfold remember, MAX_HISTORY_SIZE. simpl. f_equal.
  apply take_filter_ne, distinct_NoDup.
Qed.

(** The recent files are the twenty most recently opened different files, the latest first,
    whatever the history of files, commands and errors; the recent commands likewise, and the
    recent errors are the last twenty, repeated ones included. *)
Theorem recent_lists_hold_the_latest files commands errors :
  let h := foldl (λ h x, add_error x h) (foldl (λ h x, add_command x h) (foldl (λ h x, add_file x h) new files) commands) errors in
  recent_files h = take MAX_HISTORY_SIZE (distinct (reverse files)) ∧
  recent_commands h = take MAX_HISTORY_SIZE (distinct (reverse commands)) ∧
  recent_errors h = take MAX_HISTORY_SIZE (reverse errors).
Proof.
  assert (∀ l h, foldl (λ h x, add_file x h) h l =
    mk (foldl (λ r x, remember x r) (recent_files h) l) (recent_commands h) (recent_errors h)) as Hf.
  { induction l as [|x l IH]; intros [f c e]; [done|]. simpl. by rewrite IH. }
  assert (∀ l h, foldl (λ h x, add_command x h) h l =
    mk (recent_files h) (foldl (λ r x, remember x r) (recent_commands h) l) (recent_errors h)) as Hc.
  { induction l as [|x l IH]; intros [f c e]; [done|]. simpl. by rewrite IH. }
  assert (∀ l h, foldl (λ h x, add_error x h) h l =
    mk (recent_files h) (recent_commands h) (foldl (λ r x, take MAX_HISTORY_SIZE (x :: r)) (recent_errors h) l)) as He.
  { induction l as [|x l IH]; intros [f c e]; [done|]. simpl. by rewrite IH. }
  cbv zeta. rewrite He, Hc, Hf. cbn [recent_files recent_commands recent_errors new].
  rewrite !remember_distinct. split; [done|]. split; [done|].
  clear. induction errors as [|x l IH] using rev_ind; [done|].
  rewrite foldl_app, reverse_snoc. cbn [foldl]. rewrite IH. unfold MAX_HISTORY_SIZE. simpl. f_equal.
  by rewrite take_take.
Qed.
End HistorySpec.

Module RegistrySurface.
(** The palette lists every command of the tables once, all enabled; and every prompt that the
    palette can run as it is, without arguments, is one that the parser accepts. *)
Theorem palette_prompts_are_commands `{UuidText} `{Lowercase} :
  NoDup (CommandDescriptor.id <$> CommandPalette.list_commands build_command_registry) ∧
  Forall (λ d, CommandDescriptor.enabled d = true) (CommandPalette.list_commands build_command_registry) ∧
  ∀ d p, d ∈ CommandPalette.list_commands build_command_registry →
    CommandDescriptor.prompt_pattern d = Some p → CommandDescriptor.requires_args d = false →
    ∃ c, parse_command p = accept c.
Proof.
  split; [|split].
  - apply (bool_decide_unpack _). vm_compute. exact I.
  - repeat constructor.
  - intros d p Hd Hp Ha.
    assert (forallb (λ d, match CommandDescriptor.prompt_pattern d, CommandDescriptor.requires_args d with
                          | Some p, false => match parse_command p with Return (Ok _) => true | _ => false end
                          | _, _ => true
                          end) (CommandPalette.list_commands build_command_registry) = true) as Hall
      by (vm_compute; reflexivity).
    apply (proj1 (forallb_forall _ _)) with (x := d) in Hall; [|by apply list_elem_of_In].
    rewrite Hp, Ha in Hall. destruct (parse_command p) as [[c|e]| |]; try done. by exists c.
Qed.

(** The prompt suggests [save] and [quit], which are no commands, and marks the boot commands, which
    are, as invalid. *)
Lemma suggested_quit_is_no_command `{UuidText} `{Lowercase} :
  parse_command (str "quit") = reject (str "Unknown command: quit") ∧
  parse_command (str "save") = reject (str "Unknown command: save") ∧
  (PromptSuggestionSpec.pattern <$> non_launch_prefix_suggestions (str "q")) = [str "quit"].
Proof. done. Qed.
Lemma boot_command_is_marked_invalid `{UuidText} `{Lowercase} :
  parse_command (str "boot profile show") = accept WorkspaceCommand.BootProfileShow ∧
  validate_command (str "boot profile show") = PromptValidation.Invalid.
Proof. done. Qed.
End RegistrySurface.

Module CommandExample.
(** Identifiers in unary, to evaluate examples. *)
Fixpoint unary (n : nat) : string := match n with O => "x" | S n => "1" +:+ unary n end.
#[local] Instance format : UuidFormat := {| uuid_to_string u := unary (N.to_nat u); uuid_debug u := unary (N.to_nat u) |}.
Lemma unary_length n : length (str (unary n)) = S n.
Proof. induction n as [|n IH]; [done|]. change (str (unary (S n))) with (49%N :: str (unary n)). simpl. by rewrite IH. Qed.
Lemma unary_word n : word (str (unary n)).
Proof.
  induction n as [|n [IH1 IH2]]; [by split; repeat constructor|].
  change (str (unary (S n))) with (49%N :: str (unary n)). split; [done|by constructor].
Qed.
#[local] Instance text : UuidText.
Proof.
  refine {| parse_uuid s := Some (N.of_nat (pred (length s))) |}.
  - intros u. simpl. rewrite unary_length. simpl. by rewrite N2Nat.id.
  - intros u. apply unary_word.
Defined.
#[local] Existing Instance ascii_lowercase.
Lemma printed_commands_parse_witness :
  parse_command (str "settings set editor.tab_size 8 spaces") =
    accept (WorkspaceCommand.SettingsSet (str "editor.tab_size") (str "8 spaces")).
Proof.
  apply (ParseSpec.printed_commands_parse (WorkspaceCommand.SettingsSet (str "editor.tab_size") (str "8 spaces"))).
  split; [apply (bool_decide_unpack _); vm_compute; exact I|].
  exists [str "8"; str "spaces"]. split; [done|]. split; [apply (bool_decide_unpack _); vm_compute; exact I|reflexivity].
Defined.
Lemma prompt_agrees_with_parser_witness :
  validate_command (str "  help keys") = PromptValidation.ValidComplete ∧
  parse_command (str "  help keys") = accept (WorkspaceCommand.Help HelpCategory.Keys).
Proof.
  split; [|reflexivity]. apply (proj2 (PromptSpec.prompt_agrees_with_parser (str "  help keys"))). left.
  split; [exists (WorkspaceCommand.Help HelpCategory.Keys); reflexivity|].
  apply (bool_decide_unpack (¬ (str "help" = str "settings" ∨ str "help" = str "boot" ∨
    ((str "help" = str "list" ∨ str "help" = str "next" ∨ str "help" = str "prev" ∨ str "help" = str "previous")
     ∧ [str "keys"] ≠ [])))). vm_compute. exact I.
Defined.
End CommandExample.
