(* ===== verification/FsView.v ===== *)
(** * File-system views

    [fs_view/src] and [services_fs_view/src]: a directory maps names to objects, a path is
    split at its slashes and walked from the root that the caller holds, and the service keeps
    the directories it may walk into.  The root is a value of the caller, changed in place; the
    service may hold a registered copy of it, which the operations do not change.  Linking
    adds exactly one directory entry, making a directory one entry and an empty directory, and
    unlinking removes one entry. *)

From S2P Require Import Prelude Debug Storage Editor Text.
Open Scope string_scope.
Open Scope list_scope.
Open Scope N_scope.

(** [str::split] at a character, [str::trim_matches] of one. *)
Module Slash.
Fixpoint split_from (c : N) (acc s : Str.t) : list Str.t :=
  match s with
  | [] => [reverse acc]
  | d :: s => if d =? c then reverse acc :: split_from c [] s else split_from c (d :: acc) s
  end.
Definition split (c : N) (s : Str.t) : list Str.t := split_from c [] s.
Fixpoint trim_start (c : N) (s : Str.t) : Str.t :=
  match s with
  | d :: s' => if d =? c then trim_start c s' else s
  | [] => []
  end.
Definition trim (c : N) (s : Str.t) : Str.t := reverse (trim_start c (reverse (trim_start c s))).

Lemma split_from_word c w acc s :
  c ∉ w → split_from c acc (w ++ s) = split_from c (reverse w ++ acc) s.
Proof.
  revert acc. induction w as [|d w IH]; intros acc Hc; [done|]. simpl.
  apply not_elem_of_cons in Hc as [Hd Hw]. apply not_eq_sym in Hd.
  rewrite (proj2 (N.eqb_neq d c) Hd), IH by done. by rewrite reverse_cons, <-app_assoc.
Qed.

(** Splitting gives back pieces that were joined by the character. *)
Lemma split_join_with c l :
  l ≠ [] → Forall (λ w, c ∉ w) l → split c (join_with [c] l) = l.
Proof.
  unfold split. intros Hne Hl. induction Hl as [|w l Hw Hl IH]; [done|]. destruct l as [|w' l].
  - simpl. rewrite <-(app_nil_r w) at 1. rewrite split_from_word by done. simpl.
    by rewrite app_nil_r, reverse_involutive.
  - change (join_with [c] (w :: w' :: l)) with (w ++ [c] ++ join_with [c] (w' :: l)).
    rewrite split_from_word by done. rewrite app_nil_r. simpl split_from at 1.
    rewrite N.eqb_refl, reverse_involutive. f_equal. by apply IH.
Qed.

Lemma split_from_pieces c acc s :
  c ∉ acc → Forall (λ w, c ∉ w) (split_from c acc s)
            ∧ join_with [c] (split_from c acc s) = reverse acc ++ s ∧ split_from c acc s ≠ [].
Proof.
  revert acc. induction s as [|d s IH]; intros acc Hacc; simpl.
  - split_and!; [|by rewrite app_nil_r|done]. constructor; [|done]. by rewrite elem_of_reverse.
  - destruct (N.eqb_spec d c) as [->|Hd].
    + destruct (IH []) as (Hf & Hj & Hn); [apply not_elem_of_nil|]. split_and!; [|  |done].
      * constructor; [by rewrite elem_of_reverse|done].
      * destruct (split_from c [] s) as [|x l] eqn:E; [done|]. simpl in Hj |- *. by rewrite Hj.
    + destruct (IH (d :: acc)) as (Hf & Hj & Hn); [rewrite elem_of_cons; naive_solver|].
      split_and!; [done| |done]. by rewrite Hj, reverse_cons, <-app_assoc.
Qed.

(** The pieces hold no separator, and joining them gives the text back. *)
Lemma split_pieces c s :
  Forall (λ w, c ∉ w) (split c s) ∧ join_with [c] (split c s) = s ∧ split c s ≠ [].
Proof. apply split_from_pieces, not_elem_of_nil. Qed.

Lemma trim_start_head c s : head s ≠ Some c → trim_start c s = s.
Proof. destruct s as [|d s]; [done|]. simpl. destruct (N.eqb_spec d c); naive_solver. Qed.

Lemma trim_id c s : head s ≠ Some c → last s ≠ Some c → trim c s = s.
Proof.
  intros Hh Hl. unfold trim. rewrite (trim_start_head c s) by done.
  rewrite trim_start_head; [apply reverse_involutive|]. by rewrite head_reverse.
Qed.
End Slash.

(** ** Paths ([fs_view/src/path.rs]) *)

Module PathError.
(* fs_view/src/path.rs:8-25 PathError *)
Inductive t :=
| InvalidPath (msg : Str.t)
| NotFound (msg : Str.t)
| NotADirectory (msg : Str.t)
| AccessDenied (msg : Str.t).
#[global] Instance eq_dec : EqDecision t.
Proof. solve_decision. Defined.
(* fs_view/src/path.rs:9-24 PathError *)
Definition display (e : t) : Str.t :=
  match e with
  | InvalidPath s => Str.of_string "Invalid path: " ++ s
  | NotFound s => Str.of_string "Not found: " ++ s
  | NotADirectory s => Str.of_string "Not a directory: " ++ s
  | AccessDenied s => Str.of_string "Access denied: " ++ s
  end.
End PathError.

Module PathResolver.
(** [/] *)
Definition slash : N := 47.
Definition dot : Str.t := [46].
Definition dotdot : Str.t := [46; 46].
Definition invalid (s : string) : PathError.t := PathError.InvalidPath (Str.of_string s).
(** The loop over the components. *)
(* fs_view/src/path.rs:58-70 PathResolver::split_path *)
Fixpoint check_components (l : list Str.t) : result unit PathError.t :=
  match l with
  | [] => Ok tt
  | c :: l =>
      if bool_decide (c = []) then Err (invalid "Path contains empty component")
      else if bool_decide (c = dot) || bool_decide (c = dotdot)
      then Err (invalid "Relative path components (. or ..) are not supported")
      else check_components l
  end.
(* fs_view/src/path.rs:46-73 PathResolver::split_path *)
Definition split_path (path : Str.t) : result (list Str.t) PathError.t :=
  let path := Slash.trim slash path in
  if bool_decide (path = []) then Err (invalid "Empty path")
  else
    let components := Slash.split slash path in
    match check_components components with
    | Err e => Err e
    | Ok _ => Ok components
    end.
(* fs_view/src/path.rs:75-84 PathResolver::is_valid_name *)
Definition is_valid_name (name : Str.t) : bool :=
  negb (bool_decide (name = [])) && negb (bool_decide (name = dot))
  && negb (bool_decide (name = dotdot)) && negb (contains [slash] name) && negb (contains [0] name).

(** The names a path may have as its components. *)
Definition component (n : Str.t) : Prop := n ≠ [] ∧ n ≠ dot ∧ n ≠ dotdot ∧ slash ∉ n.
#[global] Instance component_dec n : Decision (component n).
Proof. apply _. Defined.

Lemma check_components_Ok l :
  check_components l = Ok tt ↔ Forall (λ n, n ≠ [] ∧ n ≠ dot ∧ n ≠ dotdot) l.
Proof.
  induction l as [|c l IH]; simpl; [split; [constructor|done]|].
  rewrite Forall_cons. repeat case_bool_decide; simpl; naive_solver.
Qed.

(** What splitting accepts are lists of components, and it accepts every such list. *)
Lemma split_path_components path l :
  split_path path = Ok l → l ≠ [] ∧ Forall component l ∧ join_with [slash] l = Slash.trim slash path.
Proof.
  unfold split_path. case_bool_decide; [done|].
  destruct (check_components _) as [[]|] eqn:E; [|done]. intros [= <-].
  apply check_components_Ok in E.
  destruct (Slash.split_pieces slash (Slash.trim slash path)) as (Hf & Hj & Hn).
  split_and!; [done| |done]. rewrite Forall_forall in *. intros n Hin. unfold component.
  specialize (E n Hin). specialize (Hf n Hin). naive_solver.
Qed.

Lemma join_ends l :
  l ≠ [] → Forall component l →
  join_with [slash] l ≠ [] ∧ head (join_with [slash] l) ≠ Some slash ∧ last (join_with [slash] l) ≠ Some slash.
Proof.
  intros Hne Hl. induction Hl as [|n l (Hn & _ & _ & Hs) Hl IH]; [done|].
  assert (head n ≠ Some slash) as Hhd.
  { destruct n as [|c n]; [done|]. intros [= ->]. apply Hs. constructor. }
  assert (last n ≠ Some slash) as Hlt by (intros E; by apply Hs, last_Some_elem_of).
  destruct l as [|n' l]; [done|].
  change (join_with [slash] (n :: n' :: l)) with (n ++ [slash] ++ join_with [slash] (n' :: l)).
  destruct IH as (H1 & H2 & H3); [done|]. destruct n as [|c n]; [done|]. split_and!; [done|done|].
  destruct (join_with [slash] (n' :: l)) as [|d r] using rev_ind; [done|].
  rewrite !app_assoc, last_snoc. by rewrite last_snoc in H3.
Qed.

Lemma split_path_join l :
  l ≠ [] → Forall component l → split_path (join_with [slash] l) = Ok l.
Proof.
  intros Hne Hl. destruct (join_ends l Hne Hl) as (H1 & H2 & H3). unfold split_path.
  rewrite Slash.trim_id, bool_decide_false by done.
  assert (Forall (λ w, slash ∉ w) l) as Hw.
  { eapply Forall_impl; [exact Hl|]. by intros n (_ & _ & _ & ?). }
  rewrite Slash.split_join_with by done.
  assert (check_components l = Ok tt) as ->; [|done].
  apply check_components_Ok. eapply Forall_impl; [exact Hl|]. by intros n (? & ? & ? & _).
Qed.
End PathResolver.

(** ** Directories ([fs_view/src/directory.rs]) *)

Module DirectoryEntry.
(* fs_view/src/directory.rs:12-35 DirectoryEntry *)
Record t := new { name : Str.t; object_id : ObjectId.t; kind : ObjectKind.t }.
#[global] Instance eq_dec : EqDecision t.
Proof. solve_decision. Defined.
End DirectoryEntry.

Module DirectoryView.
(* fs_view/src/directory.rs:37-48 DirectoryView *)
Record t := mk { id : ObjectId.t; entries : gmap Str.t DirectoryEntry.t }.
#[global] Instance rebuild_t : Rebuild t := λ d, mk (id d) (entries d).
(* fs_view/src/directory.rs:51-57 DirectoryView::new *)
Definition new (id : ObjectId.t) : t := mk id ∅.
(* fs_view/src/directory.rs:59-68 DirectoryView::add_entry *)
Definition add_entry (e : DirectoryEntry.t) (d : t) : bool * t :=
  match entries d !! DirectoryEntry.name e with
  | Some _ => (false, d)
  | None => (true, d <| entries ::= <[DirectoryEntry.name e := e]> |>)
  end.
(* fs_view/src/directory.rs:70-75 DirectoryView::remove_entry *)
Definition remove_entry (name : Str.t) (d : t) : option DirectoryEntry.t * t :=
  (entries d !! name, d <| entries ::= delete name |>).
(* fs_view/src/directory.rs:77-80 DirectoryView::get_entry *)
Definition get_entry (name : Str.t) (d : t) : option DirectoryEntry.t := entries d !! name.
(* fs_view/src/directory.rs:82-85 DirectoryView::list_entries *)
Definition list_entries `{HashOrder} (d : t) : list DirectoryEntry.t := hm_values (entries d).
(* fs_view/src/directory.rs:87-90 DirectoryView::count *)
Definition count (d : t) : N := N.of_nat (size (entries d)).
End DirectoryView.

(** What a directory picker needs to walk into a directory. *)
(* fs_view/src/lib.rs:27-37 DirectoryResolver *)
Class DirectoryResolver (R : Type) := resolve_directory : ObjectId.t → R → option DirectoryView.t.

(** ** The operations ([services_fs_view/src]) *)

Module OperationError.
(* services_fs_view/src/operations.rs:9-35 OperationError *)
Inductive t :=
| PathError (e : PathError.t)
| NotFound (msg : Str.t)
| AlreadyExists (msg : Str.t)
| NotADirectory (msg : Str.t)
| AccessDenied (msg : Str.t)
| InvalidOperation (msg : Str.t).
#[global] Instance eq_dec : EqDecision t.
Proof. solve_decision. Defined.
(* services_fs_view/src/operations.rs:12-34 OperationError *)
Definition display (e : t) : Str.t :=
  match e with
  | PathError e => Str.of_string "Path error: " ++ PathError.display e
  | NotFound s => Str.of_string "Object not found: " ++ s
  | AlreadyExists s => Str.of_string "Already exists: " ++ s
  | NotADirectory s => Str.of_string "Not a directory: " ++ s
  | AccessDenied s => Str.of_string "Access denied: " ++ s
  | InvalidOperation s => Str.of_string "Invalid operation: " ++ s
  end.
End OperationError.

Module StatInfo.
(* services_fs_view/src/operations.rs:37-48 StatInfo *)
Record t := mk { id : ObjectId.t; kind : ObjectKind.t; size : option N; entry_count : option N }.
End StatInfo.

Module FileSystemViewService.
Import OperationError.
(* services_fs_view/src/service.rs:10-18 FileSystemViewService *)
Record t := mk { directories : gmap ObjectId.t DirectoryView.t }.
#[global] Instance rebuild_t : Rebuild t := λ s, mk (directories s).
(* services_fs_view/src/service.rs:21-26 FileSystemViewService::new *)
Definition new : t := mk ∅.
(* services_fs_view/src/service.rs:28-33 FileSystemViewService::register_directory *)
Definition register_directory (d : DirectoryView.t) (s : t) : t :=
  s <| directories ::= <[DirectoryView.id d := d]> |>.
(* services_fs_view/src/service.rs:35-38 FileSystemViewService::get_directory *)
Definition get_directory (id : ObjectId.t) (s : t) : option DirectoryView.t := directories s !! id.
(** The walk along all components but the last. *)
(* services_fs_view/src/service.rs:63-77 FileSystemViewService::resolve_parent *)
Fixpoint walk (s : t) (current : DirectoryView.t) (components : list Str.t)
    : result DirectoryView.t OperationError.t :=
  match components with
  | [] => Ok current
  | c :: components =>
      match DirectoryView.get_entry c current with
      | None => Err (NotFound c)
      | Some entry =>
          if negb (bool_decide (DirectoryEntry.kind entry = ObjectKind.Map)) then Err (NotADirectory c)
          else
            match directories s !! DirectoryEntry.object_id entry with
            | None => Err (NotFound c)
            | Some d => walk s d components
            end
      end
  end.
(* services_fs_view/src/service.rs:45-81 FileSystemViewService::resolve_parent *)
Definition resolve_parent (root : DirectoryView.t) (path : Str.t) (s : t)
    : result (DirectoryView.t * Str.t) OperationError.t :=
  match PathResolver.split_path path with
  | Err e => Err (PathError e)
  | Ok [] => Err (PathError (PathResolver.invalid "Empty path"))
  | Ok [c] => Ok (root, c)
  | Ok (c :: rest) =>
      match walk s root (removelast (c :: rest)) with
      | Err e => Err e
      | Ok d => Ok (d, List.last rest c)
      end
  end.
(* services_fs_view/src/service.rs:83-93 FileSystemViewService::resolve_path *)
Definition resolve_path (root : DirectoryView.t) (path : Str.t) (s : t)
    : result DirectoryEntry.t OperationError.t :=
  match resolve_parent root path s with
  | Err e => Err e
  | Ok (parent, name) => ok_or (DirectoryView.get_entry name parent) (NotFound name)
  end.
(** A path of slashes alone names the root. *)
Definition is_root (path : Str.t) : bool := bool_decide (Slash.trim PathResolver.slash path = []).
(* services_fs_view/src/service.rs:103-122 FileSystemViewService::ls *)
Definition ls `{HashOrder} (root : DirectoryView.t) (path : Str.t) (s : t)
    : result (list DirectoryEntry.t) OperationError.t :=
  if is_root path then Ok (DirectoryView.list_entries root)
  else
    match resolve_path root path s with
    | Err e => Err e
    | Ok entry =>
        if negb (bool_decide (DirectoryEntry.kind entry = ObjectKind.Map)) then Err (NotADirectory path)
        else
          match directories s !! DirectoryEntry.object_id entry with
          | None => Err (NotFound path)
          | Some d => Ok (DirectoryView.list_entries d)
          end
    end.
(* services_fs_view/src/service.rs:124-154 FileSystemViewService::stat *)
Definition stat (root : DirectoryView.t) (path : Str.t) (s : t) : result StatInfo.t OperationError.t :=
  if is_root path
  then Ok (StatInfo.mk (DirectoryView.id root) ObjectKind.Map None (Some (DirectoryView.count root)))
  else
    match resolve_path root path s with
    | Err e => Err e
    | Ok entry =>
        let entry_count :=
          if bool_decide (DirectoryEntry.kind entry = ObjectKind.Map)
          then DirectoryView.count <$> directories s !! DirectoryEntry.object_id entry
          else None in
        Ok (StatInfo.mk (DirectoryEntry.object_id entry) (DirectoryEntry.kind entry) None entry_count)
    end.
(* services_fs_view/src/service.rs:156-165 FileSystemViewService::open *)
Definition open (root : DirectoryView.t) (path : Str.t) (s : t) : result ObjectId.t OperationError.t :=
  if is_root path then Ok (DirectoryView.id root)
  else map_ok DirectoryEntry.object_id (resolve_path root path s).
(** What the three mutations do to the parent: the root of the caller when it has the same
    identifier, the registered directory otherwise. *)
(* services_fs_view/src/service.rs:183-193 FileSystemViewService::mkdir *)
Definition on_parent (parent_id : ObjectId.t) (f : DirectoryView.t → DirectoryView.t)
    (rs : DirectoryView.t * t) : result unit OperationError.t * (DirectoryView.t * t) :=
  let '(root, s) := rs in
  if bool_decide (parent_id = DirectoryView.id root) then (Ok tt, (f root, s))
  else
    match directories s !! parent_id with
    | None => (Err (NotFound (Str.of_string "parent")), (root, s))
    | Some d => (Ok tt, (root, s <| directories ::= <[parent_id := f d]> |>))
    end.
(* services_fs_view/src/service.rs:167-199 FileSystemViewService::mkdir *)
Definition mkdir (drawn : ObjectId.t) (path : Str.t) (rs : DirectoryView.t * t)
    : result ObjectId.t OperationError.t * (DirectoryView.t * t) :=
  match resolve_parent rs.1 path rs.2 with
  | Err e => (Err e, rs)
  | Ok (parent, name) =>
      match DirectoryView.get_entry name parent with
      | Some _ => (Err (AlreadyExists name), rs)
      | None =>
          let entry := DirectoryEntry.new name drawn ObjectKind.Map in
          match on_parent (DirectoryView.id parent) (λ d, (DirectoryView.add_entry entry d).2) rs with
          | (Err e, rs) => (Err e, rs)
          | (Ok _, (root, s)) =>
              (Ok drawn, (root, s <| directories ::= <[drawn := DirectoryView.new drawn]> |>))
          end
      end
  end.
(* services_fs_view/src/service.rs:201-231 FileSystemViewService::link *)
Definition link (path : Str.t) (object_id : ObjectId.t) (kind : ObjectKind.t) (rs : DirectoryView.t * t)
    : result unit OperationError.t * (DirectoryView.t * t) :=
  match resolve_parent rs.1 path rs.2 with
  | Err e => (Err e, rs)
  | Ok (parent, name) =>
      match DirectoryView.get_entry name parent with
      | Some _ => (Err (AlreadyExists name), rs)
      | None =>
          let entry := DirectoryEntry.new name object_id kind in
          on_parent (DirectoryView.id parent) (λ d, (DirectoryView.add_entry entry d).2) rs
      end
  end.
(* services_fs_view/src/service.rs:233-255 FileSystemViewService::unlink *)
Definition unlink (path : Str.t) (rs : DirectoryView.t * t)
    : result unit OperationError.t * (DirectoryView.t * t) :=
  match resolve_parent rs.1 path rs.2 with
  | Err e => (Err e, rs)
  | Ok (parent, name) =>
      match DirectoryView.get_entry name parent with
      | None => (Err (NotFound name), rs)
      | Some _ =>
          on_parent (DirectoryView.id parent) (λ d, (DirectoryView.remove_entry name d).2) rs
      end
  end.
(* services_fs_view/src/service.rs:258-263 FileSystemViewService::resolve_directory *)
#[global] Instance resolver : DirectoryResolver t := get_directory.
End FileSystemViewService.

(** ** Paths and what they name *)

Module FsSpec.
Import FileSystemViewService.
Notation fs := (DirectoryView.t * FileSystemViewService.t)%type.

(** The entry a list of components names: the specification of a walk. *)
Fixpoint named (s : FileSystemViewService.t) (d : DirectoryView.t) (p : list Str.t)
    : option DirectoryEntry.t :=
  match p with
  | [] => None
  | [n] => DirectoryView.entries d !! n
  | n :: p =>
      e ← DirectoryView.entries d !! n;
      if bool_decide (DirectoryEntry.kind e = ObjectKind.Map)
      then d' ← directories s !! DirectoryEntry.object_id e; named s d' p
      else None
  end%stdpp.

(** The directories are filed under their identifiers, and no entry leads back to the root. *)
Record fs_wf (rs : fs) : Prop := {
  wf_keyed : ∀ id d, directories rs.2 !! id = Some d → DirectoryView.id d = id;
  wf_root : ∀ d n e, d = rs.1 ∨ (∃ id, directories rs.2 !! id = Some d) →
    DirectoryView.entries d !! n = Some e → DirectoryEntry.object_id e ≠ DirectoryView.id rs.1
}.

(** One file system has at least the directories and the entries of another. *)
Definition dir_le (d d' : DirectoryView.t) : Prop :=
  DirectoryView.id d = DirectoryView.id d' ∧ DirectoryView.entries d ⊆ DirectoryView.entries d'.
Definition fs_le (rs rs' : fs) : Prop :=
  dir_le rs.1 rs'.1 ∧
  ∀ id d, directories rs.2 !! id = Some d → ∃ d', directories rs'.2 !! id = Some d' ∧ dir_le d d'.

Lemma dir_le_refl d : dir_le d d.
Proof. by split. Qed.
#[local] Hint Resolve dir_le_refl : core.

Lemma named_walk s d p n :
  named s d (p ++ [n]) =
  match walk s d p with Ok x => DirectoryView.entries x !! n | Err _ => None end.
Proof.
  revert d. induction p as [|c p IH]; intros d; simpl; [done|].
  destruct (p ++ [n]) as [|x r] eqn:E; [by destruct p|]. unfold DirectoryView.get_entry.
  destruct (DirectoryView.entries d !! c) as [e|]; simpl; [|done].
  case_bool_decide; simpl; [|done].
  destruct (directories s !! _); simpl; [apply IH|done].
Qed.

Lemma resolve_parent_Ok root path s d n :
  resolve_parent root path s = Ok (d, n) ↔
  ∃ p, PathResolver.split_path path = Ok (p ++ [n]) ∧ walk s root p = Ok d.
Proof.
  unfold resolve_parent. destruct (PathResolver.split_path path) as [l|e]; [|split; [done|by intros (? & ? & _)]].
  destruct l as [|c l] using rev_ind.
  { split; [done|]. intros (p & [= E] & _). by destruct p. }
  clear IHl. assert (∀ p n, l ++ [c] = p ++ [n] ↔ l = p ∧ c = n) as Hinj.
  { intros p m. split; [apply app_inj_tail|]. by intros [-> ->]. }
  transitivity (walk s root l = Ok d ∧ c = n).
  - destruct l as [|x l]; cbn [app]; [simpl; split; [by intros [= -> ->]|by intros [[= ->] ->]]|].
    destruct (l ++ [c]) as [|y r] eqn:E; [by destruct l|]. rewrite <-E.
    change (removelast (x :: l ++ [c])) with (removelast ((x :: l) ++ [c])).
    rewrite removelast_last, last_last. destruct (walk s root (x :: l));
      [split; [by intros [= -> ->]|by intros [[= ->] ->]]|split; [done|by intros [? _]]].
  - split.
    + intros [Hw ->]. by exists l.
    + intros (p & [= E] & Hw). apply Hinj in E as [-> ->]. done.
Qed.

(** Resolving a path finds exactly the entry its components name. *)
Lemma resolve_path_named root path s e :
  resolve_path root path s = Ok e ↔
  ∃ p, PathResolver.split_path path = Ok p ∧ named s root p = Some e.
Proof.
  unfold resolve_path. split.
  - destruct (resolve_parent root path s) as [[d n]|] eqn:E; [|done].
    apply resolve_parent_Ok in E as (p & Hp & Hw). unfold DirectoryView.get_entry.
    destruct (DirectoryView.entries d !! n) as [e'|] eqn:Hn; [|done]. intros [= <-].
    exists (p ++ [n]). by rewrite named_walk, Hw.
  - intros (p & Hp & Hn). destruct p as [|n p _] using rev_ind; [done|]. rewrite named_walk in Hn.
    destruct (walk s root p) as [d|] eqn:Hw; [|done].
    rewrite (proj2 (resolve_parent_Ok root path s d n)) by eauto. unfold DirectoryView.get_entry.
    by rewrite Hn.
Qed.

Lemma walk_mono rs rs' d d' p x :
  fs_le rs rs' → dir_le d d' → walk rs.2 d p = Ok x → ∃ x', walk rs'.2 d' p = Ok x' ∧ dir_le x x'.
Proof.
  intros [_ Hle]. revert d d'. induction p as [|c p IH]; intros d d' [Hid Hd]; simpl.
  { intros [= <-]. eexists. by split. }
  unfold DirectoryView.get_entry. destruct (DirectoryView.entries d !! c) as [e|] eqn:He; [|done].
  rewrite (lookup_weaken _ _ _ _ He Hd). case_bool_decide; simpl; [|done].
  destruct (directories rs.2 !! _) as [y|] eqn:Hy; [|done].
  destruct (Hle _ _ Hy) as (y' & -> & Hyy). by apply IH.
Qed.

(** Whatever a smaller file system names, a larger one names too. *)
Lemma named_mono rs rs' p e : fs_le rs rs' → named rs.2 rs.1 p = Some e → named rs'.2 rs'.1 p = Some e.
Proof.
  intros Hle. destruct p as [|n p _] using rev_ind; [done|]. rewrite !named_walk.
  destruct (walk rs.2 rs.1 p) as [x|] eqn:E; [|done]. intros Hn.
  destruct (walk_mono rs rs' _ _ _ _ Hle (proj1 Hle) E) as (x' & -> & [_ Hx]).
  by apply (lookup_weaken _ _ _ _ Hn).
Qed.

(** A walk ends at the root, or at a directory filed under another identifier. *)
Lemma walk_end rs p d x :
  fs_wf rs → d = rs.1 ∨ directories rs.2 !! DirectoryView.id d = Some d ∧ DirectoryView.id d ≠ DirectoryView.id rs.1 →
  walk rs.2 d p = Ok x →
  x = rs.1 ∨ directories rs.2 !! DirectoryView.id x = Some x ∧ DirectoryView.id x ≠ DirectoryView.id rs.1.
Proof.
  intros [Hk Hr]. revert d. induction p as [|c p IH]; intros d Hd; simpl; [by intros [= <-]|].
  unfold DirectoryView.get_entry. destruct (DirectoryView.entries d !! c) as [e|] eqn:He; [|done].
  case_bool_decide; simpl; [|done].
  destruct (directories rs.2 !! DirectoryEntry.object_id e) as [y|] eqn:Hy; [|done].
  apply IH. right. rewrite (Hk _ _ Hy). split; [done|]. apply (Hr d c e); [|done].
  destruct Hd as [->|[Hd _]]; eauto.
Qed.

(** What a mutation of the parent gives: the directory a walk ended at is changed, and no other. *)
Definition changes (f : DirectoryView.t → DirectoryView.t) (d : DirectoryView.t) (rs rs' : fs) : Prop :=
  (d = rs.1 ∧ rs' = (f rs.1, rs.2)) ∨
  (directories rs.2 !! DirectoryView.id d = Some d ∧ DirectoryView.id d ≠ DirectoryView.id rs.1
   ∧ rs' = (rs.1, rs.2 <| directories ::= <[DirectoryView.id d := f d]> |>)).

(** The directories of a file system by place: the caller's root ([None]), and what is
    registered under an identifier. *)
Definition dir_at (rs : fs) (w : option ObjectId.t) : option DirectoryView.t :=
  match w with None => Some rs.1 | Some id => directories rs.2 !! id end.
Lemma changes_one_place f d rs rs' :
  changes f d rs rs' →
  ∃ w, dir_at rs w = Some d ∧ ∀ w', dir_at rs' w' = if decide (w' = w) then Some (f d) else dir_at rs w'.
Proof.
  intros [[-> ->]|(Hd & _ & ->)].
  - exists None. split; [done|]. by intros [i|].
  - exists (Some (DirectoryView.id d)). split; [done|]. intros [i|]; [|done]. simpl.
    destruct (decide (i = DirectoryView.id d)) as [->|Hi].
    + by rewrite decide_True, lookup_insert_eq.
    + rewrite decide_False by congruence. by rewrite lookup_insert_ne.
Qed.

Lemma on_parent_changes rs p d f :
  fs_wf rs → walk rs.2 rs.1 p = Ok d →
  ∃ rs', on_parent (DirectoryView.id d) f rs = (Ok tt, rs') ∧ changes f d rs rs'.
Proof.
  intros Hwf Hw. unfold on_parent. destruct rs as [root s].
  destruct (walk_end _ _ _ _ Hwf (or_introl eq_refl) Hw) as [->|[Hd Hne]]; simpl in *.
  - rewrite bool_decide_true by done. eexists. split; [done|]. by left.
  - rewrite bool_decide_false, Hd by done. eexists. split; [done|]. by right.
Qed.

Definition adds (n : Str.t) (e : DirectoryEntry.t) (d : DirectoryView.t) : DirectoryView.t :=
  d <| DirectoryView.entries ::= <[n := e]> |>.
Definition drops (n : Str.t) (d : DirectoryView.t) : DirectoryView.t :=
  d <| DirectoryView.entries ::= delete n |>.

Lemma changes_le f d rs rs' : changes f d rs rs' → dir_le d (f d) → fs_le rs rs'.
Proof.
  intros [[-> ->]|(Hd & Hne & ->)] Hf; split; simpl; [done|by eauto|apply dir_le_refl|].
  intros i x Hx. destruct (decide (i = DirectoryView.id d)) as [->|Hi].
  - rewrite lookup_insert_eq. eexists. split; [done|]. congruence.
  - rewrite lookup_insert_ne by done. eauto.
Qed.
Lemma changes_ge f d rs rs' : changes f d rs rs' → dir_le (f d) d → fs_le rs' rs.
Proof.
  intros [[-> ->]|(Hd & Hne & ->)] Hf; split; simpl; [done|by eauto|apply dir_le_refl|].
  intros i x. destruct (decide (i = DirectoryView.id d)) as [->|Hi].
  - rewrite lookup_insert_eq. intros [= <-]. eauto.
  - rewrite lookup_insert_ne by done. eauto.
Qed.

(** The changed directory as the changed file system walks to it. *)
Lemma changes_walk f d rs rs' p x :
  fs_wf rs → DirectoryView.id (f d) = DirectoryView.id d →
  changes f d rs rs' → fs_wf rs' → walk rs'.2 rs'.1 p = Ok x → DirectoryView.id x = DirectoryView.id d →
  x = f d.
Proof.
  intros Hwf Hid Hc Hwf' Hw Hx.
  destruct (walk_end _ _ _ _ Hwf' (or_introl eq_refl) Hw) as [->|[Hd Hne]];
    destruct Hc as [[-> ->]|(Hd' & Hne' & ->)]; simpl in *.
  - done.
  - by destruct Hne'.
  - congruence.
  - rewrite Hx, lookup_insert_eq in Hd. congruence.
Qed.

Lemma changes_wf_adds n e d rs rs' :
  fs_wf rs → DirectoryEntry.object_id e ≠ DirectoryView.id rs.1 → changes (adds n e) d rs rs' → fs_wf rs'.
Proof.
  intros [Hk Hr] He [[-> ->]|(Hd & Hne & ->)].
  - split; simpl; [done|]. intros x m e' [->|Hx]; simpl; [|by apply Hr; right].
    rewrite lookup_insert_Some. intros [[_ <-]|[_ Hm]]; [done|]. by apply (Hr rs.1 m); [left|].
  - split; simpl.
    + intros i x. rewrite lookup_insert_Some. intros [[<- <-]|[_ Hx]]; [done|by apply Hk].
    + intros x m e' [->|[i Hx]]; [by apply Hr; left|]. revert Hx.
      rewrite lookup_insert_Some. intros [[<- <-]|[_ Hx]]; simpl.
      * rewrite lookup_insert_Some. intros [[_ <-]|[_ Hm]]; [done|]. apply (Hr d m); eauto.
      * apply Hr. eauto.
Qed.
Lemma changes_wf_drops n d rs rs' : fs_wf rs → changes (drops n) d rs rs' → fs_wf rs'.
Proof.
  intros [Hk Hr] [[-> ->]|(Hd & Hne & ->)].
  - split; simpl; [done|]. intros x m e' [->|Hx]; simpl; [|by apply Hr; right].
    rewrite lookup_delete_Some. intros [_ Hm]. by apply (Hr rs.1 m); [left|].
  - split; simpl.
    + intros i x. rewrite lookup_insert_Some. intros [[<- <-]|[_ Hx]]; [done|by apply Hk].
    + intros x m e' [->|[i Hx]]; [by apply Hr; left|]. revert Hx.
      rewrite lookup_insert_Some. intros [[<- <-]|[_ Hx]]; simpl.
      * rewrite lookup_delete_Some. intros [_ Hm]. apply (Hr d m); eauto.
      * apply Hr. eauto.
Qed.

Lemma adds_le n e d : DirectoryView.entries d !! n = None → dir_le d (adds n e d).
Proof. intros Hn. split; [done|]. by apply insert_subseteq. Qed.
Lemma drops_le n d : dir_le (drops n d) d.
Proof. split; [done|]. apply delete_subseteq. Qed.

(** What [link] does: nothing, or it adds one entry to the directory the path leads to. *)
Lemma link_cases path o k rs :
  fs_wf rs →
  (∃ e, link path o k rs = (Err e, rs)) ∨
  ∃ p n d rs', PathResolver.split_path path = Ok (p ++ [n]) ∧ walk rs.2 rs.1 p = Ok d
    ∧ DirectoryView.entries d !! n = None ∧ link path o k rs = (Ok tt, rs')
    ∧ changes (adds n (DirectoryEntry.new n o k)) d rs rs'.
Proof.
  intros Hwf. unfold link. destruct (resolve_parent rs.1 path rs.2) as [[d n]|e] eqn:E; [|by eauto].
  apply resolve_parent_Ok in E as (p & Hp & Hw). unfold DirectoryView.get_entry.
  destruct (DirectoryView.entries d !! n) as [x|] eqn:Hn; [by eauto|]. right.
  destruct (on_parent_changes rs p d
    (λ d, (DirectoryView.add_entry (DirectoryEntry.new n o k) d).2) Hwf Hw) as (rs' & Hop & Hc).
  exists p, n, d, rs'. split_and!; try done. revert Hc. unfold changes, DirectoryView.add_entry, adds. simpl.
  intros [[-> ->]|(Hd & Hne & ->)]; rewrite Hn; [by left|right; by split_and!].
Qed.

Lemma link_free_name path o k rs p n d :
  fs_wf rs → PathResolver.split_path path = Ok (p ++ [n]) → walk rs.2 rs.1 p = Ok d →
  DirectoryView.entries d !! n = None → ∃ rs', link path o k rs = (Ok tt, rs').
Proof.
  intros Hwf Hp Hw Hn. unfold link. rewrite (proj2 (resolve_parent_Ok _ _ _ d n)) by eauto.
  unfold DirectoryView.get_entry. rewrite Hn.
  edestruct on_parent_changes as (rs' & -> & _); [exact Hwf|exact Hw|]. by exists rs'.
Qed.

Lemma unlink_cases path rs :
  fs_wf rs →
  (∃ e, unlink path rs = (Err e, rs)) ∨
  ∃ p n d rs', PathResolver.split_path path = Ok (p ++ [n]) ∧ walk rs.2 rs.1 p = Ok d
    ∧ is_Some (DirectoryView.entries d !! n) ∧ unlink path rs = (Ok tt, rs') ∧ changes (drops n) d rs rs'.
Proof.
  intros Hwf. unfold unlink. destruct (resolve_parent rs.1 path rs.2) as [[d n]|e] eqn:E; [|by eauto].
  apply resolve_parent_Ok in E as (p & Hp & Hw). unfold DirectoryView.get_entry.
  destruct (DirectoryView.entries d !! n) as [x|] eqn:Hn; [|by eauto]. right.
  destruct (on_parent_changes rs p d (λ d, (DirectoryView.remove_entry n d).2) Hwf Hw) as (rs' & Hop & Hc).
  exists p, n, d, rs'. split_and!; eauto.
Qed.

(** Walking again to the directory that was changed finds it changed. *)
Lemma changed_walk n e p d rs rs' :
  fs_wf rs → DirectoryEntry.object_id e ≠ DirectoryView.id rs.1 → DirectoryView.entries d !! n = None →
  walk rs.2 rs.1 p = Ok d → changes (adds n e) d rs rs' → walk rs'.2 rs'.1 p = Ok (adds n e d).
Proof.
  intros Hwf He Hn Hw Hc. pose proof (changes_le _ _ _ _ Hc (adds_le n e d Hn)) as Hle.
  destruct (walk_mono rs rs' _ _ _ _ Hle (proj1 Hle) Hw) as (x & Hx & [Hid _]). rewrite Hx. f_equal.
  eapply changes_walk; eauto using changes_wf_adds.
Qed.

Lemma drops_adds n e d : DirectoryView.entries d !! n = None → drops n (adds n e d) = d.
Proof. intros Hn. destruct d as [i m]. unfold drops, adds, update_field. simpl in *. f_equal. by apply delete_insert_id. Qed.

(** Adding an entry and dropping it again gives the file system back. *)
Lemma changes_undo n e d rs rs' rs'' :
  fs_wf rs → DirectoryView.entries d !! n = None →
  changes (adds n e) d rs rs' → changes (drops n) (adds n e d) rs' rs'' → rs'' = rs.
Proof.
  intros Hwf Hn Hc Hc'. destruct rs as [root [dirs]].
  destruct Hc as [[-> ->]|(Hd & Hne & ->)]; destruct Hc' as [[E ->]|(Hd' & Hne' & ->)]; simpl in *.
  - by rewrite drops_adds.
  - done.
  - by rewrite <-E in Hne.
  - rewrite drops_adds by done. f_equal. unfold update_field. simpl. f_equal.
    rewrite insert_insert_eq. by apply insert_id.
Qed.
End FsSpec.

Module FsProps.
Import FileSystemViewService FsSpec.

(** C35: In a well-formed file system, linking an object other than the root at a path succeeds
    exactly when the path splits into a parent that names a directory and a name free in it.  It
    then adds exactly one directory entry: the parent directory gets an entry of that name for the
    object, and no other entry of it and no other directory changes or appears.  So the path now
    names the object, every path that named something names the same as before, the file system
    stays well formed, and unlinking the path gives the file system back as it was.  A link that fails
    changes nothing.  (One entry may be several paths: a parent with two names shows it under
    both.) *)
Theorem link_adds_one_entry path o k rs :
  fs_wf rs → o ≠ DirectoryView.id rs.1 →
  match link path o k rs with
  | (Err _, rs') =>
      rs' = rs ∧ ¬ ∃ p n d, PathResolver.split_path path = Ok (p ++ [n]) ∧ walk rs.2 rs.1 p = Ok d
                            ∧ DirectoryView.entries d !! n = None
  | (Ok _, rs') =>
      (∃ p n d w, PathResolver.split_path path = Ok (p ++ [n]) ∧ walk rs.2 rs.1 p = Ok d
         ∧ DirectoryView.entries d !! n = None ∧ dir_at rs w = Some d
         ∧ (∀ w', dir_at rs' w' =
              if decide (w' = w)
              then Some (DirectoryView.mk (DirectoryView.id d)
                           (<[n := DirectoryEntry.new n o k]> (DirectoryView.entries d)))
              else dir_at rs w')
         ∧ resolve_path rs'.1 path rs'.2 = Ok (DirectoryEntry.new n o k))
      ∧ fs_wf rs'
      ∧ (∀ q e, resolve_path rs.1 q rs.2 = Ok e → resolve_path rs'.1 q rs'.2 = Ok e)
      ∧ unlink path rs' = (Ok tt, rs)
  end.
Proof.
  intros Hwf Ho. destruct (link_cases path o k rs Hwf) as
    [[e He]|(p & n & d & rs' & Hp & Hw & Hn & -> & Hc)].
  { rewrite He. split; [done|]. intros (p & n & d & Hp & Hw & Hn).
    by destruct (link_free_name path o k rs p n d Hwf Hp Hw Hn) as [rs' Hok]; rewrite Hok in He. }
  assert (fs_wf rs') as Hwf' by (by apply (changes_wf_adds n (DirectoryEntry.new n o k) d rs)).
  pose proof (changed_walk n (DirectoryEntry.new n o k) p d rs rs' Hwf Ho Hn Hw Hc) as Hw'.
  assert (resolve_path rs'.1 path rs'.2 = Ok (DirectoryEntry.new n o k)) as Hres.
  { apply resolve_path_named. exists (p ++ [n]). split; [done|]. rewrite named_walk, Hw'. simpl.
    apply lookup_insert_eq. }
  split_and!; [|done| |].
  - destruct (changes_one_place _ _ _ _ Hc) as (w & Hd & Hw2). by exists p, n, d, w; destruct d.
  - intros q e. rewrite !resolve_path_named. intros (l & Hl & He). exists l. split; [done|].
    by eapply named_mono; [eapply changes_le, adds_le|].
  - destruct (unlink_cases path rs' Hwf') as [[e E]|(p' & n' & d' & rs'' & Hp' & Hx & Hs & -> & Hc')].
    + exfalso. revert E. unfold unlink. rewrite (proj2 (resolve_parent_Ok _ _ _ _ _)) by eauto.
      assert (DirectoryView.get_entry n (adds n (DirectoryEntry.new n o k) d)
              = Some (DirectoryEntry.new n o k)) as -> by apply lookup_insert_eq.
      destruct (on_parent_changes rs' p _ (λ d, (DirectoryView.remove_entry n d).2) Hwf' Hw')
        as (r & Hr & _). by rewrite Hr.
    + rewrite Hp in Hp'. injection Hp' as E. apply app_inj_tail in E as [<- <-].
      rewrite Hw' in Hx. injection Hx as <-. f_equal. by eapply changes_undo.
Qed.

(** Unlinking a path either fails and changes nothing, or removes exactly that path's entry:
    the path names nothing any more, and whatever is still named was named the same before. *)
Theorem unlink_removes_one_path path rs :
  fs_wf rs →
  match unlink path rs with
  | (Err _, rs') => rs' = rs
  | (Ok _, rs') =>
      fs_wf rs'
      ∧ (∀ e, resolve_path rs'.1 path rs'.2 ≠ Ok e)
      ∧ (∀ q e, resolve_path rs'.1 q rs'.2 = Ok e → resolve_path rs.1 q rs.2 = Ok e)
  end.
Proof.
  intros Hwf. destruct (unlink_cases path rs Hwf) as
    [[e ->]|(p & n & d & rs' & Hp & Hw & Hn & -> & Hc)]; [done|].
  assert (fs_wf rs') as Hwf' by (by eapply changes_wf_drops).
  pose proof (changes_ge _ _ _ _ Hc (drops_le n d)) as Hle. split_and!; [done| |].
  - intros e. rewrite resolve_path_named. intros (l & Hl & He). rewrite Hp in Hl. injection Hl as <-.
    rewrite named_walk in He. destruct (walk rs'.2 rs'.1 p) as [x|] eqn:Hx; [|done].
    destruct (walk_mono rs' rs _ _ _ _ Hle (proj1 Hle) Hx) as (y & Hy & [Hid _]).
    rewrite Hw in Hy. injection Hy as <-.
    assert (x = drops n d) as -> by (by apply (changes_walk (drops n) d rs rs' p x)). simpl in He.
    by rewrite lookup_delete_eq in He.
  - intros q e. rewrite !resolve_path_named. intros (l & Hl & He). exists l. split; [done|].
    by eapply named_mono.
Qed.

(** A path made of valid components is split into exactly those components, and whatever
    splitting accepts is the components of the path without its outer slashes. *)
Theorem split_path_is_inverse_of_join path l :
  PathResolver.split_path path = Ok l ↔
  l ≠ [] ∧ Forall PathResolver.component l
  ∧ Slash.trim PathResolver.slash path = join_with [PathResolver.slash] l.
Proof.
  split.
  - intros H%PathResolver.split_path_components. naive_solver.
  - intros (Hne & Hl & E). pose proof (PathResolver.split_path_join l Hne Hl) as H.
    destruct (PathResolver.join_ends l Hne Hl) as (_ & H2 & H3). unfold PathResolver.split_path in *.
    by rewrite (Slash.trim_id _ _ H2 H3), <-E in H.
Qed.

Lemma mkdir_link drawn path rs :
  mkdir drawn path rs =
  match link path drawn ObjectKind.Map rs with
  | (Err e, rs) => (Err e, rs)
  | (Ok _, (root, s)) => (Ok drawn, (root, register_directory (DirectoryView.new drawn) s))
  end.
Proof.
  unfold mkdir, link. destruct (resolve_parent _ _ _) as [[d n]|]; [|by destruct rs].
  destruct (DirectoryView.get_entry n d); [by destruct rs|].
  by destruct (on_parent _ _ _) as [[] [root s]].
Qed.

(** Making a directory either fails and changes nothing, or makes the path lead to a new
    directory: opening it gives the drawn identifier, it is empty, and every path that named
    something names the same as before. *)
Theorem mkdir_makes_empty_directory `{HashOrder} drawn path rs :
  fs_wf rs → drawn ≠ DirectoryView.id rs.1 → directories rs.2 !! drawn = None →
  match mkdir drawn path rs with
  | (Err _, rs') => rs' = rs
  | (Ok id, rs') =>
      id = drawn ∧ fs_wf rs'
      ∧ open rs'.1 path rs'.2 = Ok drawn ∧ ls rs'.1 path rs'.2 = Ok []
      ∧ (∀ q e, resolve_path rs.1 q rs.2 = Ok e → resolve_path rs'.1 q rs'.2 = Ok e)
  end.
Proof.
  intros Hwf Hd Hfresh. rewrite mkdir_link.
  destruct (link_cases path drawn ObjectKind.Map rs Hwf) as
    [[e ->]|(p & n & d & rs1 & Hp & Hw & Hn & -> & Hc)]; [by destruct rs|].
  set (en := DirectoryEntry.new n drawn ObjectKind.Map) in *.
  assert (fs_wf rs1) as Hwf1 by (by apply (changes_wf_adds n en d rs)).
  pose proof (changed_walk n en p d rs rs1 Hwf Hd Hn Hw Hc) as Hw1.
  assert (DirectoryView.id rs1.1 = DirectoryView.id rs.1) as Hid by (by destruct Hc as [[-> ->]|(? & ? & ->)]).
  assert (directories rs1.2 !! drawn = None) as Hfresh1.
  { destruct Hc as [[-> ->]|(Hd' & ? & ->)]; [done|]. simpl. rewrite lookup_insert_ne; [done|]. congruence. }
  pose proof (changes_le _ _ _ _ Hc (adds_le n en d Hn)) as Hle1.
  destruct rs1 as [root s]. set (rs2 := (root, register_directory (DirectoryView.new drawn) s)).
  assert (fs_le (root, s) rs2) as Hle2.
  { split; [by split|]. simpl. intros i x Hx. exists x. split; [|by split].
    rewrite lookup_insert_ne; [done|]. intros <-. simpl in Hfresh1. congruence. }
  assert (resolve_path rs2.1 path rs2.2 = Ok en) as Hres.
  { apply resolve_path_named. exists (p ++ [n]). split; [done|].
    apply (named_mono (root, s) rs2); [done|]. rewrite named_walk. simpl in Hw1 |- *. rewrite Hw1.
    apply lookup_insert_eq. }
  assert (is_root path = false) as Hr.
  { apply bool_decide_eq_false. intros E. unfold PathResolver.split_path in Hp.
    by rewrite bool_decide_true in Hp. }
  split_and!.
  - done.
  - split; simpl.
    + intros i x. rewrite lookup_insert_Some. intros [[<- <-]|[_ Hx]]; [done|].
      by apply (wf_keyed _ Hwf1).
    + intros x m e [->|[i Hx]]; [by apply (wf_root _ Hwf1); left|]. revert Hx.
      rewrite lookup_insert_Some. intros [[<- <-]|[_ Hx]]; simpl; [by rewrite lookup_empty|].
      apply (wf_root _ Hwf1). eauto.
  - unfold open. by rewrite Hr, Hres.
  - unfold ls. rewrite Hr, Hres. simpl. rewrite lookup_insert_eq. simpl.
    unfold DirectoryView.list_entries, hm_values. simpl.
    assert (hm_iter (∅ : gmap Str.t DirectoryEntry.t) = []) as ->; [|done].
    apply Permutation_nil_r. by rewrite hm_iter_perm, map_to_list_empty.
  - intros q e. rewrite !resolve_path_named. intros (l & Hl & He). exists l. split; [done|].
    eapply named_mono; [exact Hle2|]. by eapply named_mono.
Qed.

(** *** A concrete file system *)

Definition oid (n : N) : ObjectId.t := ObjectId.from_uuid n.
Definition sample_root : DirectoryView.t :=
  DirectoryView.mk (oid 1) {[ Str.of_string "docs" := DirectoryEntry.new (Str.of_string "docs") (oid 2) ObjectKind.Map ]}.
Definition sample_fs : fs :=
  (sample_root, FileSystemViewService.mk {[ oid 2 := DirectoryView.new (oid 2) ]}).
Lemma sample_fs_wf : fs_wf sample_fs.
Proof.
  split; simpl.
  - intros i d [<- <-]%lookup_singleton_Some. done.
  - intros d n e [->|[i Hd]]; simpl.
    + by intros [<- <-]%lookup_singleton_Some.
    + apply lookup_singleton_Some in Hd as [<- <-]. simpl. by rewrite lookup_empty.
Qed.
Definition notes : Str.t := Str.of_string "docs/notes".
Definition is_Ok_pair {A B E} (x : result A E * B) : bool := is_ok x.1.

Lemma link_adds_one_entry_witness :
  is_Ok_pair (link notes (oid 9) ObjectKind.Blob sample_fs) = true ∧
  match link notes (oid 9) ObjectKind.Blob sample_fs with
  | (Err _, rs') => rs' = sample_fs
  | (Ok _, rs') =>
      (∃ w, ∀ w', w' ≠ w → dir_at rs' w' = dir_at sample_fs w')
      ∧ fs_wf rs' ∧ unlink notes rs' = (Ok tt, sample_fs)
  end.
Proof.
  split; [vm_compute; reflexivity|].
  pose proof (link_adds_one_entry notes (oid 9) ObjectKind.Blob sample_fs sample_fs_wf) as H.
  destruct (link _ _ _ _) as [[[]|e] rs']; [|by apply H].
  destruct H as ((p & n & d & w & _ & _ & _ & _ & Hw & _) & H1 & _ & H2); [done|]. split_and!; [|done|done].
  exists w. intros w' Hne. rewrite Hw. by rewrite decide_False.
Defined.

Lemma unlink_removes_one_path_witness :
  is_Ok_pair (unlink (Str.of_string "docs") sample_fs) = true ∧
  match unlink (Str.of_string "docs") sample_fs with
  | (Err _, rs') => rs' = sample_fs
  | (Ok _, rs') => ∀ e, resolve_path rs'.1 (Str.of_string "docs") rs'.2 ≠ Ok e
  end.
Proof.
  split; [vm_compute; reflexivity|].
  pose proof (unlink_removes_one_path (Str.of_string "docs") sample_fs sample_fs_wf) as H.
  destruct (unlink _ _) as [[[]|e] rs']; [|exact H]. by destruct H as (_ & H & _).
Defined.

Lemma mkdir_makes_empty_directory_witness :
  is_Ok_pair (mkdir (oid 3) notes sample_fs) = true ∧
  match mkdir (oid 3) notes sample_fs with
  | (Err _, rs') => rs' = sample_fs
  | (Ok _, rs') => open rs'.1 notes rs'.2 = Ok (oid 3)
  end.
Proof.
  split; [vm_compute; reflexivity|].
  pose proof (@mkdir_makes_empty_directory canonical_order (oid 3) notes sample_fs sample_fs_wf) as H.
  destruct (mkdir _ _ _) as [[i|e] rs']; [|by apply H; vm_compute].
  destruct H as (_ & _ & H & _); [done|by vm_compute|exact H].
Defined.

(** The service may hold a registered copy of the root.  When the root is linked below itself, a
    directory made through that link is put into the root of the caller, and the path it was made
    at does not name it. *)
Lemma linked_root_hides_new_directory :
  let root := DirectoryView.new (oid 1) in
  let self := Str.of_string "self" in
  let fs1 := (link self (oid 1) ObjectKind.Map (root, register_directory root new)).2 in
  let r := mkdir (oid 2) (Str.of_string "self/x") fs1 in
  r.1 = Ok (oid 2)
  ∧ open r.2.1 (Str.of_string "self/x") r.2.2 = Err (OperationError.NotFound (Str.of_string "x")).
Proof. vm_compute. done. Qed.
End FsProps.
