(* ===== verification/Picker.v ===== *)
(** * The file picker

    [services_file_picker/src]: a list of the entries of a directory, directories first and each
    group by name, with a selection that the arrow keys move; Enter walks into a directory or
    picks a file, Escape walks back or cancels. *)

From S2P Require Import Prelude Debug Storage Input Editor Text Views FsView.
Open Scope string_scope.
Open Scope list_scope.
Open Scope nat_scope.

Module FilePickerResult.
(* services_file_picker/src/lib.rs:72-86 FilePickerResult *)
Inductive t := FileSelected (object_id : ObjectId.t) (name : Str.t) | Cancelled | Continue.
#[global] Instance eq_dec : EqDecision t.
Proof. solve_decision. Defined.
End FilePickerResult.

Module FilePickerError.
(* services_file_picker/src/lib.rs:88-99 FilePickerError *)
Inductive t := PermissionDenied (s : Str.t) | InvalidDirectory (s : Str.t) | EmptyDirectory.
(* services_file_picker/src/lib.rs:91-98 FilePickerError *)
Definition display (e : t) : Str.t :=
  match e with
  | PermissionDenied s => Str.of_string "Permission denied: cannot access " ++ s
  | InvalidDirectory s => Str.of_string "Invalid directory: " ++ s
  | EmptyDirectory => Str.of_string "No entries in directory"
  end.
End FilePickerError.

Module PickerEntry.
(* services_file_picker/src/lib.rs:101-112 PickerEntry *)
Record t := mk { name : Str.t; object_id : ObjectId.t; kind : ObjectKind.t; is_directory : bool }.
#[global] Instance eq_dec : EqDecision t.
Proof. solve_decision. Defined.
(* services_file_picker/src/lib.rs:115-123 PickerEntry::from_directory_entry *)
Definition from_directory_entry (e : DirectoryEntry.t) : t :=
  mk (DirectoryEntry.name e) (DirectoryEntry.object_id e) (DirectoryEntry.kind e)
     (bool_decide (DirectoryEntry.kind e = ObjectKind.Map)).
(** Directories first, then by name. *)
(* services_file_picker/src/lib.rs:163-170 FilePicker::refresh_entries *)
Definition leb (a b : t) : bool :=
  match is_directory a, is_directory b with
  | true, false => true
  | false, true => false
  | _, _ => Utf8.leb (name a) (name b)
  end.
End PickerEntry.

Module FilePicker.
Import FilePickerResult.
(* services_file_picker/src/lib.rs:126-137 FilePicker *)
Record t := mk {
  current_directory : DirectoryView.t;
  entries : list PickerEntry.t;
  selected_index : nat;
  directory_stack : list DirectoryView.t
}.
#[global] Instance rebuild_t : Rebuild t := λ p,
  mk (current_directory p) (entries p) (selected_index p) (directory_stack p).

Section with_order.
Context `{HashOrder}.

(* services_file_picker/src/lib.rs:152-178 FilePicker::refresh_entries *)
Definition refresh_entries (p : t) : t :=
  let raw_entries := DirectoryView.list_entries (current_directory p) in
  let p := p <| entries :=
    stable_sort PickerEntry.leb (PickerEntry.from_directory_entry <$> raw_entries) |> in
  if length (entries p) <=? selected_index p then p <| selected_index := 0 |> else p.
(* services_file_picker/src/lib.rs:140-150 FilePicker::new *)
Definition new (root : DirectoryView.t) : t := refresh_entries (mk root [] 0 []).
(* services_file_picker/src/lib.rs:211-220 FilePicker::move_selection_up *)
Definition move_selection_up (p : t) : t :=
  match entries p with
  | [] => p
  | _ :: _ =>
      p <| selected_index :=
        if selected_index p =? 0 then length (entries p) - 1 else selected_index p - 1 |>
  end.
(* services_file_picker/src/lib.rs:222-227 FilePicker::move_selection_down *)
Definition move_selection_down (p : t) : t :=
  match entries p with
  | [] => p
  | _ :: _ => p <| selected_index := (selected_index p + 1) mod length (entries p) |>
  end.
(** The directories on the stack, the last one pushed first. *)
(* services_file_picker/src/lib.rs:229-262 FilePicker::handle_selection *)
Definition handle_selection `{DirectoryResolver R} (resolver : option R) (p : t)
    : outcome (FilePickerResult.t * t) :=
  match entries p with
  | [] => Return (Continue, p)
  | _ :: _ =>
      selected ← expect (entries p !! selected_index p);
      if PickerEntry.is_directory selected then
        match resolver with
        | None => Return (Continue, p)
        | Some resolver =>
            match resolve_directory (PickerEntry.object_id selected) resolver with
            | None => Return (Continue, p)
            | Some subdir =>
                let p := p <| directory_stack ::= cons (current_directory p) |> in
                Return (Continue, refresh_entries (p <| current_directory := subdir |>))
            end
        end
      else Return (FileSelected (PickerEntry.object_id selected) (PickerEntry.name selected), p)
  end.
(* services_file_picker/src/lib.rs:264-275 FilePicker::handle_back *)
Definition handle_back (p : t) : FilePickerResult.t * t :=
  match directory_stack p with
  | parent :: stack =>
      (Continue, refresh_entries (p <| directory_stack := stack |> <| current_directory := parent |>))
  | [] => (Cancelled, p)
  end.
(* services_file_picker/src/lib.rs:180-209 FilePicker::process_input *)
Definition process_input `{DirectoryResolver R} (event : InputEvent.t) (resolver : option R) (p : t)
    : outcome (FilePickerResult.t * t) :=
  match event with
  | InputEvent.Key ke =>
      if bool_decide (KeyEvent.state ke = KeyState.Pressed) then
        match KeyEvent.code ke with
        | KeyCode.Up => Return (Continue, move_selection_up p)
        | KeyCode.Down => Return (Continue, move_selection_down p)
        | KeyCode.Enter => handle_selection resolver p
        | KeyCode.Escape => Return (handle_back p)
        | _ => Return (Continue, p)
        end
      else Return (Continue, p)
  end.
End with_order.

(* services_file_picker/src/lib.rs:292-295 FilePicker::selected_entry *)
Definition selected_entry (p : t) : option PickerEntry.t := entries p !! selected_index p.
(* services_file_picker/src/lib.rs:297-300 FilePicker::entry_count *)
Definition entry_count (p : t) : nat := length (entries p).

(** ** What is shown ([services_file_picker/src/render.rs]) *)

(* services_file_picker/src/render.rs:72-75 display_index_one_based *)
Definition display_index_one_based (zero_based : nat) : nat := zero_based + 1.
(* services_file_picker/src/render.rs:77-83 format_entry *)
Definition format_entry (e : PickerEntry.t) (is_selected : bool) : Str.t :=
  let prefix := if is_selected then Str.of_string "> " else Str.of_string "  " in
  let type_marker := if PickerEntry.is_directory e then Str.of_string "/" else Str.of_string " " in
  prefix ++ PickerEntry.name e ++ type_marker.
(* services_file_picker/src/render.rs:20-30 FilePicker::render_text_buffer *)
Definition render_lines (p : t) : list Str.t :=
  match entries p with
  | [] => [Str.of_string "(empty directory)"]
  | es => imap (λ i e, format_entry e (i =? selected_index p)) es
  end.
(* services_file_picker/src/render.rs:13-40 FilePicker::render_text_buffer *)
Definition render_text_buffer (view_id : ViewId.t) (revision timestamp_ns : N) (p : t) : ViewFrame.t :=
  ViewFrame.with_cursor (CursorPosition.new (N.of_nat (selected_index p)) 0)
    (ViewFrame.new view_id ViewKind.TextBuffer revision (ViewContent.text_buffer (render_lines p))
       timestamp_ns).
(** [" — "] *)
Definition dash : Str.t := [32; 8212; 32]%N.
(* services_file_picker/src/render.rs:42-69 FilePicker::render_status_line *)
Definition render_status_line (view_id : ViewId.t) (revision timestamp_ns : N) (breadcrumb : Str.t)
    (p : t) : ViewFrame.t :=
  let status_text :=
    if entry_count p =? 0 then breadcrumb ++ dash ++ Str.of_string "Empty"
    else breadcrumb ++ dash ++ Str.of_string (pretty (display_index_one_based (selected_index p)))
         ++ Str.of_string " of " ++ Str.of_string (pretty (entry_count p)) ++ Str.of_string " items" in
  ViewFrame.new view_id ViewKind.StatusLine revision (ViewContent.status_line status_text) timestamp_ns.
End FilePicker.

Module PickerSpec.
Import FilePickerResult FilePicker.

Section with_order.
Context `{HashOrder}.

(** The entries of a directory as they are to be listed. *)
Definition listing (d : DirectoryView.t) : list PickerEntry.t :=
  stable_sort PickerEntry.leb (PickerEntry.from_directory_entry <$> DirectoryView.list_entries d).

(** The list shows the current directory, and the selection is one of its lines. *)
Record picker_ok (p : t) : Prop := {
  ok_entries : entries p = listing (current_directory p);
  ok_selected : selected_index p < length (entries p) ∨ entries p = [] ∧ selected_index p = 0
}.

Lemma refresh_ok p : picker_ok (refresh_entries p).
Proof.
  unfold refresh_entries. destruct p as [d es i st]. simpl. fold (listing d).
  destruct (Nat.leb_spec (length (listing d)) i); (split; [done|]); simpl; [|by left].
  destruct (listing d) eqn:E; simpl; [by right|left; lia].
Qed.
#[local] Hint Resolve refresh_ok : core.

Lemma process_input_ok `{DirectoryResolver R} event (resolver : option R) p :
  picker_ok p → ∃ r p', process_input event resolver p = Return (r, p') ∧ picker_ok p'.
Proof.
  intros [He Hs]. destruct event as [ke]. unfold process_input. case_bool_decide; [|eauto using picker_ok].
  assert (picker_ok p) as Hp by done.
  destruct (KeyEvent.code ke); eauto.
  - unfold handle_back. destruct (directory_stack p); by eauto.
  - unfold handle_selection. destruct (entries p) as [|e es] eqn:E; [eauto|].
    destruct Hs as [Hs|[? _]]; [|done]. destruct (lookup_lt_is_Some_2 _ _ Hs) as [x Hx]. rewrite Hx. simpl.
    destruct (PickerEntry.is_directory x); [|by eauto]. destruct resolver as [r|]; [|by eauto].
    destruct (resolve_directory _ r); by eauto.
  - eexists _, _. split; [done|]. unfold move_selection_up. destruct (entries p) as [|e es] eqn:E; [done|].
    split; simpl; [by rewrite E|]. rewrite E. left. destruct (_ =? _); simpl; simpl in Hs; [lia|].
    destruct Hs as [Hs|[? _]]; [lia|done].
  - eexists _, _. split; [done|]. unfold move_selection_down. destruct (entries p) as [|e es] eqn:E; [done|].
    split; simpl; [by rewrite E|]. rewrite E. left.
    by apply (Nat.mod_upper_bound (selected_index p + 1) (S (length es))).
Qed.

(** A run of the picker over a list of events. *)
Fixpoint run `{DirectoryResolver R} (resolver : option R) (events : list InputEvent.t) (p : t)
    : outcome (list FilePickerResult.t * t) :=
  match events with
  | [] => Return ([], p)
  | e :: events =>
      '(r, p) ← process_input e resolver p;
      '(rs, p) ← run resolver events p;
      Return (r :: rs, p)
  end.

Lemma run_ok `{DirectoryResolver R} (resolver : option R) events p :
  picker_ok p → ∃ rs p', run resolver events p = Return (rs, p') ∧ picker_ok p'.
Proof.
  revert p. induction events as [|e events IH]; intros p Hp; simpl; [eauto|].
  destruct (process_input_ok e resolver p Hp) as (r & p1 & -> & H1). simpl.
  destruct (IH p1 H1) as (rs & p2 & -> & H2). simpl. eauto.
Qed.

Lemma leb_total a b : PickerEntry.leb a b = false → PickerEntry.leb b a = true.
Proof.
  assert (∀ s t, Utf8.leb s t = false → Utf8.leb t s = true) as Hleb.
  { intros s. induction s as [|c s IH]; intros [|d t]; simpl; try done.
    intros [Hlt Heq]%orb_false_iff. apply N.ltb_ge in Hlt. apply orb_true_iff.
    destruct (N.ltb_spec d c); [by left|]. right. assert (c = d) as -> by lia.
    rewrite N.eqb_refl in *. by apply IH. }
  unfold PickerEntry.leb. destruct (PickerEntry.is_directory a), (PickerEntry.is_directory b); try done; apply Hleb.
Qed.

Lemma elem_of_listing d x :
  x ∈ listing d ↔ ∃ n e, DirectoryView.entries d !! n = Some e ∧ x = PickerEntry.from_directory_entry e.
Proof.
  unfold listing, DirectoryView.list_entries, hm_values.
  rewrite stable_sort_Permutation, list_elem_of_fmap. split.
  - intros (e & -> & Hin). apply list_elem_of_fmap in Hin as ([n e'] & -> & Hin%elem_of_hm_iter). eauto.
  - intros (n & e & Hn & ->). exists e. split; [done|]. apply list_elem_of_fmap. exists (n, e).
    by rewrite elem_of_hm_iter.
Qed.

Lemma listing_length d : length (listing d) = size (DirectoryView.entries d).
Proof.
  unfold listing, DirectoryView.list_entries, hm_values. rewrite stable_sort_Permutation, !length_fmap.
  by rewrite hm_iter_perm, length_map_to_list.
Qed.
End with_order.
End PickerSpec.

Module PickerProps.
Import FilePickerResult FilePicker PickerSpec.

(** Whatever keys are pressed and whatever the resolver answers, the picker never panics; it
    lists every entry of its current directory once, in order with directories first, and its
    selection is one of the listed lines. *)
Theorem picker_lists_its_directory `{HashOrder} `{DirectoryResolver R} (resolver : option R) events root :
  ∃ rs p, run resolver events (new root) = Return (rs, p)
    ∧ length (entries p) = size (DirectoryView.entries (current_directory p))
    ∧ (∀ x, x ∈ entries p ↔ ∃ n e, DirectoryView.entries (current_directory p) !! n = Some e
                                   ∧ x = PickerEntry.from_directory_entry e)
    ∧ Sorted (λ a b, PickerEntry.leb a b = true) (entries p)
    ∧ (selected_index p < length (entries p) ∨ entries p = [] ∧ selected_index p = 0).
Proof.
  destruct (run_ok resolver events (new root) (refresh_ok _)) as (rs & p & Hr & [He Hs]).
  exists rs, p. split; [done|]. rewrite He. split_and!.
  - apply listing_length.
  - apply elem_of_listing.
  - apply stable_sort_Sorted, leb_total.
  - by rewrite <-He.
Qed.

(** A file that the picker reports is an entry of the directory it shows, not a directory, and
    reporting it changes nothing. *)
Theorem picked_file_is_listed `{HashOrder} `{DirectoryResolver R} event (resolver : option R) p o n p' :
  picker_ok p → process_input event resolver p = Return (FileSelected o n, p') →
  p' = p ∧ ∃ m e, DirectoryView.entries (current_directory p) !! m = Some e
    ∧ DirectoryEntry.object_id e = o ∧ DirectoryEntry.name e = n ∧ DirectoryEntry.kind e ≠ ObjectKind.Map.
Proof.
  intros [He Hs]. destruct event as [ke]. unfold process_input. case_bool_decide; [|done].
  destruct (KeyEvent.code ke); try done.
  - unfold handle_back. by destruct (directory_stack p).
  - unfold handle_selection. destruct (entries p) as [|x es] eqn:E; [done|].
    destruct ((x :: es) !! selected_index p) as [y|] eqn:Hy; [|done]. simpl.
    destruct (PickerEntry.is_directory y) eqn:Ey.
    { destruct resolver as [r|]; [|done]. by destruct (resolve_directory _ r). }
    intros [= <- <- <-]. split; [done|]. apply list_elem_of_lookup_2 in Hy. rewrite He in Hy.
    apply elem_of_listing in Hy as (m & e & Hm & ->). exists m, e. simpl in *.
    apply bool_decide_eq_false in Ey. done.
Qed.

Definition pressed (c : KeyCode.t) : InputEvent.t := InputEvent.Key (KeyEvent.pressed c Modifiers.none).

(** Walking into a directory with Enter and back with Escape shows the first directory again,
    with the same lines and the same directories below it on the stack. *)
Theorem escape_undoes_enter `{HashOrder} `{DirectoryResolver R} (resolver : option R) p r p1 :
  picker_ok p → process_input (pressed KeyCode.Enter) resolver p = Return (r, p1) →
  length (directory_stack p) < length (directory_stack p1) →
  ∃ p2, process_input (pressed KeyCode.Escape) resolver p1 = Return (Continue, p2)
    ∧ current_directory p2 = current_directory p ∧ entries p2 = entries p
    ∧ directory_stack p2 = directory_stack p.
Proof.
  intros [He Hs] E Hlen. assert (∃ d, p1 = refresh_entries (p <| directory_stack ::= cons (current_directory p) |>
    <| current_directory := d |>)) as [d ->].
  { revert E. unfold process_input, pressed. rewrite bool_decide_true by done. simpl. unfold handle_selection.
    destruct (entries p) as [|x es]; [intros [= _ <-]; lia|].
    destruct (_ !! selected_index p) as [y|]; [|done]. simpl.
    destruct (PickerEntry.is_directory y); [|intros [= _ <-]; lia].
    destruct resolver as [rv|]; [|intros [= _ <-]; lia].
    destruct (resolve_directory _ rv) as [d|]; [|intros [= _ <-]; lia]. intros [= _ <-]. by exists d. }
  set (q := p <| directory_stack ::= _ |> <| current_directory := d |>).
  assert (directory_stack (refresh_entries q) = current_directory p :: directory_stack p) as Hst.
  { unfold refresh_entries. simpl. by destruct (_ <=? _). }
  eexists. unfold process_input, pressed. rewrite bool_decide_true by done. simpl. unfold handle_back. rewrite Hst.
  split; [done|]. rewrite He. unfold refresh_entries at 1 3 5. simpl.
  destruct (_ <=? _); simpl; done.
Qed.

(** The frame of a picker with entries has one line per entry, and the only line marked as
    selected is the one the cursor of the frame is on. *)
Theorem rendered_selection_is_cursor view rev ts p :
  entries p ≠ [] →
  let frame := render_text_buffer view rev ts p in
  ViewContent.line_count (ViewFrame.content frame) = N.of_nat (entry_count p)
  ∧ ∀ i l, ViewContent.get_line (N.of_nat i) (ViewFrame.content frame) = Some l →
      Str.starts_with (Str.of_string "> ") l = true ↔
      ViewFrame.cursor frame = Some (CursorPosition.new (N.of_nat i) 0).
Proof.
  intros Hne. simpl. unfold render_lines, entry_count. destruct (entries p) as [|x es]; [done|].
  split; [unfold len; by rewrite length_imap|]. intros i l. rewrite Nat2N.id, list_lookup_imap.
  destruct ((x :: es) !! i) as [e|]; [|done]. intros [= <-].
  unfold format_entry. destruct (Nat.eqb_spec i (selected_index p)) as [->|Hi]; simpl.
  - done.
  - split; [done|]. intros [= E]. apply Nat2N.inj in E. by destruct Hi.
Qed.

(** *** A concrete picker *)

#[local] Instance order : HashOrder := canonical_order.
Definition resolver : FileSystemViewService.t := FsProps.sample_fs.2.
Definition picker : t := new FsProps.sample_root.
Definition file_root : DirectoryView.t :=
  DirectoryView.mk (FsProps.oid 1)
    {[ Str.of_string "a" := DirectoryEntry.new (Str.of_string "a") (FsProps.oid 5) ObjectKind.Blob ]}.

(** What an event gives, and how deep the picker is after it. *)
Definition observed (o : outcome (FilePickerResult.t * t)) : option (FilePickerResult.t * nat) :=
  match o with Return (r, p) => Some (r, length (directory_stack p)) | _ => None end.

Lemma picked_file_is_listed_witness :
  ∃ m e, DirectoryView.entries file_root !! m = Some e ∧ DirectoryEntry.object_id e = FsProps.oid 5.
Proof.
  assert (observed (process_input (pressed KeyCode.Enter) (Some resolver) (new file_root))
          = Some (FileSelected (FsProps.oid 5) (Str.of_string "a"), 0)) as Ho
    by (vm_compute; reflexivity).
  destruct (process_input (pressed KeyCode.Enter) (Some resolver) (new file_root)) as [[r p1]| |] eqn:E;
    [|discriminate Ho..].
  injection Ho as -> _.
  destruct (picked_file_is_listed (pressed KeyCode.Enter) (Some resolver) (new file_root)
    (FsProps.oid 5) (Str.of_string "a") p1 (refresh_ok _) E) as (_ & m & e & Hm & He & _).
  exists m, e. split; [exact Hm|exact He].
Defined.

Lemma escape_undoes_enter_witness :
  ∃ r p1 p2, process_input (pressed KeyCode.Enter) (Some resolver) picker = Return (r, p1)
    ∧ process_input (pressed KeyCode.Escape) (Some resolver) p1 = Return (Continue, p2)
    ∧ entries p2 = entries picker.
Proof.
  assert (observed (process_input (pressed KeyCode.Enter) (Some resolver) picker) = Some (Continue, 1)) as Ho
    by (vm_compute; reflexivity).
  destruct (process_input (pressed KeyCode.Enter) (Some resolver) picker) as [[r p1]| |] eqn:E;
    [|discriminate Ho..].
  injection Ho as _ Hl. assert (length (directory_stack picker) < length (directory_stack p1)) as Hlt.
  { rewrite Hl. vm_compute. lia. }
  destruct (escape_undoes_enter (Some resolver) picker r p1 (refresh_ok _) E Hlt) as (p2 & H1 & _ & H2 & _).
  exists r, p1, p2. split; [reflexivity|split; [exact H1|exact H2]].
Defined.

Lemma rendered_selection_is_cursor_witness :
  ViewContent.line_count (ViewFrame.content (render_text_buffer (ViewId.mk 1%N) 1%N 0%N picker)) = 1%N.
Proof.
  rewrite (proj1 (rendered_selection_is_cursor (ViewId.mk 1%N) 1%N 0%N picker ltac:(vm_compute; discriminate))).
  vm_compute. reflexivity.
Defined.
End PickerProps.
