(* ===== verification/EditorVi.v ===== *)
(** * The vi-like editor component: state

    [services_editor_vi/src]: the editor that runs as a component of the workspace.  Its buffer,
    cursor, undo and search repeat those of [editor_core] with the same conventions for texts and
    indices (file [Editor]); it adds the lines to redraw, commands with arguments, documents in
    the storage, and the frames it publishes. *)

From S2P Require Import Prelude Debug Editor Text.
Open Scope string_scope.
Open Scope list_scope.
Open Scope nat_scope.

Module Vi.

(** ** State ([services_editor_vi/src/state.rs]) *)

Module EditorMode.
(* services_editor_vi/src/state.rs:10-21 EditorMode *)
Inductive t := Normal | Insert | Command | Search.
#[global] Instance eq_dec : EqDecision t.
Proof. solve_decision. Defined.
(* services_editor_vi/src/state.rs:24-31 EditorMode::as_str *)
Definition as_str (m : t) : string :=
  match m with Normal => "NORMAL" | Insert => "INSERT" | Command => "COMMAND" | Search => "SEARCH" end.
End EditorMode.

Module Position.
(* services_editor_vi/src/state.rs:34-44 Position *)
Record t := new { row : nat; col : nat }.
#[global] Instance eq_dec : EqDecision t.
Proof. solve_decision. Defined.
#[global] Instance rebuild_t : Rebuild t := λ p, new (row p) (col p).
(* services_editor_vi/src/state.rs:46-48 Position::zero *)
Definition zero : t := new 0 0.
End Position.

Module TextBuffer.
(* services_editor_vi/src/state.rs:114-118 TextBuffer *)
Record t := mk { lines : list Str.t }.
#[global] Instance eq_dec : EqDecision t.
Proof. solve_decision. Defined.
#[global] Instance rebuild_t : Rebuild t := λ b, mk (lines b).
(* services_editor_vi/src/state.rs:121-125 TextBuffer::new *)
Definition new : t := mk [[]].
(* services_editor_vi/src/state.rs:127-134 TextBuffer::from_string *)
Definition from_string (content : Str.t) : t :=
  mk match content with [] => [[]] | _ => Str.lines content end.
(* services_editor_vi/src/state.rs:136-138 TextBuffer::as_string *)
Definition as_string (b : t) : Str.t := Str.join (lines b).
(* services_editor_vi/src/state.rs:140-142 TextBuffer::line_count *)
Definition line_count (b : t) : nat := length (lines b).
(* services_editor_vi/src/state.rs:144-146 TextBuffer::line *)
Definition line (row : nat) (b : t) : option Str.t := lines b !! row.
(* services_editor_vi/src/state.rs:148-150 TextBuffer::line_length *)
Definition line_length (row : nat) (b : t) : nat := from_option Str.len 0 (lines b !! row).
(* services_editor_vi/src/state.rs:156-169 TextBuffer::insert_char *)
Definition insert_char (pos : Position.t) (ch : N) (b : t) : outcome (bool * t) :=
  match lines b !! Position.row pos with
  | None => Return (false, b)
  | Some line =>
      if Str.len line <? Position.col pos then Return (false, b)
      else
        line ← Str.insert (Position.col pos) ch line;
        Return (true, b <| lines ::= <[Position.row pos := line]> |>)
  end.
(* services_editor_vi/src/state.rs:171-185 TextBuffer::insert_newline *)
Definition insert_newline (pos : Position.t) (b : t) : outcome (bool * t) :=
  match lines b !! Position.row pos with
  | None => Return (false, b)
  | Some line =>
      if Str.len line <? Position.col pos then Return (false, b)
      else
        '(line, rest) ← expect (Str.split_at (Position.col pos) line);
        Return (true, b <| lines ::= λ l,
          vec_insert (Position.row pos + 1) rest (<[Position.row pos := line]> l) |>)
  end.
(* services_editor_vi/src/state.rs:187-200 TextBuffer::delete_char *)
Definition delete_char (pos : Position.t) (b : t) : outcome (bool * t) :=
  match lines b !! Position.row pos with
  | None => Return (false, b)
  | Some line =>
      if Str.len line <=? Position.col pos then Return (false, b)
      else
        line ← Str.remove (Position.col pos) line;
        Return (true, b <| lines ::= <[Position.row pos := line]> |>)
  end.
(* services_editor_vi/src/state.rs:202-218 TextBuffer::backspace *)
Definition backspace (pos : Position.t) (b : t) : outcome (option Position.t * t) :=
  if 0 <? Position.col pos then
    line ← expect (lines b !! Position.row pos);
    line ← Str.remove (Position.col pos - 1) line;
    Return (Some (Position.new (Position.row pos) (Position.col pos - 1)),
            b <| lines ::= <[Position.row pos := line]> |>)
  else if 0 <? Position.row pos then
    current_line ← expect (lines b !! Position.row pos);
    let ls := delete (Position.row pos) (lines b) in
    prev_line ← expect (ls !! (Position.row pos - 1));
    Return (Some (Position.new (Position.row pos - 1) (Str.len prev_line)),
            mk (<[Position.row pos - 1 := prev_line ++ current_line]> ls))
  else Return (None, b).
(* services_editor_vi/src/state.rs:220-222 TextBuffer::is_empty *)
Definition is_empty (b : t) : bool := match lines b with [[]] => true | _ => false end.
End TextBuffer.

Module Cursor.
(* services_editor_vi/src/state.rs:51-70 Cursor *)
Record t := mk { position : Position.t }.
#[global] Instance eq_dec : EqDecision t.
Proof. solve_decision. Defined.
#[global] Instance rebuild_t : Rebuild t := λ c, mk (position c).
(* services_editor_vi/src/state.rs:58-62 Cursor::new *)
Definition new : t := mk Position.zero.
Definition row (c : t) : nat := Position.row (position c).
Definition col (c : t) : nat := Position.col (position c).
Definition set_row (r : nat) (c : t) : t := mk (Position.new r (col c)).
Definition set_col (k : nat) (c : t) : t := mk (Position.new (row c) k).
(* services_editor_vi/src/state.rs:99-105 Cursor::clamp_col *)
Definition clamp_col (b : TextBuffer.t) (c : t) : t :=
  let line_len := TextBuffer.line_length (row c) b in
  if line_len <? col c then set_col line_len c else c.
(* services_editor_vi/src/state.rs:72-77 Cursor::move_up *)
Definition move_up (b : TextBuffer.t) (c : t) : t :=
  if 0 <? row c then clamp_col b (set_row (row c - 1) c) else c.
(* services_editor_vi/src/state.rs:79-84 Cursor::move_down *)
Definition move_down (b : TextBuffer.t) (c : t) : t :=
  if row c <? TextBuffer.line_count b - 1 then clamp_col b (set_row (S (row c)) c) else c.
(* services_editor_vi/src/state.rs:86-90 Cursor::move_left *)
Definition move_left (c : t) : t := if 0 <? col c then set_col (col c - 1) c else c.
(* services_editor_vi/src/state.rs:92-97 Cursor::move_right *)
Definition move_right (b : TextBuffer.t) (c : t) : t :=
  if col c <? TextBuffer.line_length (row c) b then set_col (S (col c)) c else c.
End Cursor.

Module EditorSnapshot.
(* services_editor_vi/src/state.rs:237-242 EditorSnapshot *)
Record t := mk { buffer : TextBuffer.t; cursor : Cursor.t }.
End EditorSnapshot.

Module EditorState.
(* services_editor_vi/src/state.rs:244-266 EditorState *)
Record t := mk {
  mode : EditorMode.t;
  buffer : TextBuffer.t;
  cursor : Cursor.t;
  dirty : bool;
  command_buffer : Str.t;
  status_message : Str.t;
  document_label : option Str.t;
  undo_stack : list EditorSnapshot.t;
  redo_stack : list EditorSnapshot.t;
  search_query : Str.t;
  last_search : option Str.t;
  dirty_lines : gset nat;
  cursor_dirty : bool
}.
#[global] Instance rebuild_t : Rebuild t := λ s,
  mk (mode s) (buffer s) (cursor s) (dirty s) (command_buffer s) (status_message s) (document_label s)
     (undo_stack s) (redo_stack s) (search_query s) (last_search s) (dirty_lines s) (cursor_dirty s).
(* services_editor_vi/src/state.rs:269-285 EditorState::new *)
Definition new : t :=
  mk EditorMode.Normal TextBuffer.new Cursor.new false [] [] None [] [] [] None ∅ false.
(* services_editor_vi/src/state.rs:291-299 EditorState::set_mode *)
Definition set_mode (m : EditorMode.t) (s : t) : t :=
  let s := s <| mode := m |> in
  let s := if bool_decide (m = EditorMode.Command) then s else s <| command_buffer := [] |> in
  if bool_decide (m = EditorMode.Search) then s else s <| search_query := [] |>.
(* services_editor_vi/src/state.rs:321-323 EditorState::set_dirty *)
Definition set_dirty (d : bool) (s : t) : t := s <| dirty := d |>.
(* services_editor_vi/src/state.rs:325-327 EditorState::mark_dirty *)
Definition mark_dirty (s : t) : t := s <| dirty := true |>.
(* services_editor_vi/src/state.rs:333-335 EditorState::append_to_command *)
Definition append_to_command (ch : N) (s : t) : t := s <| command_buffer ::= λ b, b ++ [ch] |>.
(** [String::pop]. *)
Definition pop_char (b : Str.t) : Str.t := take (length b - 1) b.
(* services_editor_vi/src/state.rs:337-339 EditorState::backspace_command *)
Definition backspace_command (s : t) : t := s <| command_buffer ::= pop_char |>.
(* services_editor_vi/src/state.rs:341-343 EditorState::clear_command *)
Definition clear_command (s : t) : t := s <| command_buffer := [] |>.
(* services_editor_vi/src/state.rs:349-351 EditorState::set_status_message *)
Definition set_status_message (m : Str.t) (s : t) : t := s <| status_message := m |>.
(** The constant messages. *)
Definition say (m : string) : t → t := set_status_message (Str.of_string m).
(* services_editor_vi/src/state.rs:384-389 EditorState::clamp_cursor_col *)
Definition clamp_cursor_col (s : t) : t :=
  let line_len := TextBuffer.line_length (Cursor.row (cursor s)) (buffer s) in
  if line_len <? Cursor.col (cursor s) then s <| cursor ::= Cursor.set_col line_len |> else s.
(* services_editor_vi/src/state.rs:353-359 EditorState::move_cursor_up *)
Definition move_cursor_up (s : t) : t :=
  if 0 <? Cursor.row (cursor s)
  then (clamp_cursor_col (s <| cursor ::= λ c, Cursor.set_row (Cursor.row c - 1) c |>)) <| cursor_dirty := true |>
  else s.
(* services_editor_vi/src/state.rs:361-367 EditorState::move_cursor_down *)
Definition move_cursor_down (s : t) : t :=
  if Cursor.row (cursor s) <? TextBuffer.line_count (buffer s) - 1
  then (clamp_cursor_col (s <| cursor ::= λ c, Cursor.set_row (S (Cursor.row c)) c |>)) <| cursor_dirty := true |>
  else s.
(* services_editor_vi/src/state.rs:369-374 EditorState::move_cursor_left *)
Definition move_cursor_left (s : t) : t :=
  if 0 <? Cursor.col (cursor s)
  then s <| cursor ::= λ c, Cursor.set_col (Cursor.col c - 1) c |> <| cursor_dirty := true |> else s.
(* services_editor_vi/src/state.rs:376-382 EditorState::move_cursor_right *)
Definition move_cursor_right (s : t) : t :=
  if Cursor.col (cursor s) <? TextBuffer.line_length (Cursor.row (cursor s)) (buffer s)
  then s <| cursor ::= λ c, Cursor.set_col (S (Cursor.col c)) c |> <| cursor_dirty := true |> else s.
(* services_editor_vi/src/state.rs:395-397 EditorState::set_document_label *)
Definition set_document_label (l : option Str.t) (s : t) : t := s <| document_label := l |>.
(* services_editor_vi/src/state.rs:399-403 EditorState::load_content *)
Definition load_content (content : Str.t) (s : t) : t :=
  s <| buffer := TextBuffer.from_string content |> <| cursor := Cursor.new |> <| dirty := false |>.
(* services_editor_vi/src/state.rs:410-413 EditorState::append_to_search *)
Definition append_to_search (ch : N) (s : t) : t := s <| search_query ::= λ b, b ++ [ch] |>.
(* services_editor_vi/src/state.rs:415-418 EditorState::backspace_search *)
Definition backspace_search (s : t) : t := s <| search_query ::= pop_char |>.
(* services_editor_vi/src/state.rs:420-423 EditorState::clear_search *)
Definition clear_search (s : t) : t := s <| search_query := [] |>.

(** *** Search *)
(* services_editor_vi/src/state.rs:453-467 EditorState::find_next *)
Fixpoint search_forward (query : Str.t) (ls : list Str.t) (row col : nat)
    : outcome (option Position.t) :=
  match ls with
  | [] => Return None
  | line :: ls =>
      found ← (if col <? Str.len line
               then '(_, rest) ← expect (Str.split_at col line); Return (Str.find query rest)
               else Return None);
      match found with
      | Some pos => Return (Some (Position.new row (col + pos)))
      | None => search_forward query ls (S row) 0
      end
  end.
(* services_editor_vi/src/state.rs:469-477 EditorState::find_next *)
Fixpoint search_rows (query : Str.t) (ls : list Str.t) (row : nat) : option Position.t :=
  match ls with
  | [] => None
  | line :: ls =>
      match Str.find query line with
      | Some pos => Some (Position.new row pos)
      | None => search_rows query ls (S row)
      end
  end.
(** Backward search ([forward = false]) finds nothing. *)
(* services_editor_vi/src/state.rs:425-492 EditorState::find_next *)
Definition find_next (forward : bool) (s : t) : outcome (bool * t) :=
  let '(query, s) :=
    match search_query s with
    | [] => (last_search s, s)
    | q => (Some q, s <| last_search := Some q |>)
    end in
  match query with
  | None | Some [] => Return (false, s)
  | Some q =>
      let start_pos := Cursor.position (cursor s) in
      let fresh := match search_query s with [] => false | _ => true end in
      let start_col := if fresh then Position.col start_pos else Position.col start_pos + 1 in
      if negb forward then Return (false, s)
      else
        found ← search_forward q (drop (Position.row start_pos) (TextBuffer.lines (buffer s)))
                  (Position.row start_pos) start_col;
        match found with
        | Some p => Return (true, s <| cursor := Cursor.mk p |>)
        | None =>
            match search_rows q (take (Position.row start_pos) (TextBuffer.lines (buffer s))) 0 with
            | Some p => Return (true, s <| cursor := Cursor.mk p |>)
            | None =>
                match fresh, TextBuffer.line (Position.row start_pos) (buffer s) with
                | false, Some line =>
                    '(head, _) ← expect (Str.split_at (Nat.min (Position.col start_pos) (Str.len line)) line);
                    match Str.find q head with
                    | Some pos =>
                        Return (true, s <| cursor := Cursor.mk (Position.new (Position.row start_pos) pos) |>)
                    | None => Return (false, s)
                    end
                | _, _ => Return (false, s)
                end
            end
        end
  end.

(** *** Undo and redo *)
(* services_editor_vi/src/state.rs:494-509 EditorState::save_undo_snapshot *)
Definition save_undo_snapshot (s : t) : t :=
  let MAX_UNDO_STACK := 100 in
  let stack := undo_stack s ++ [EditorSnapshot.mk (buffer s) (cursor s)] in
  let s := s <| undo_stack := stack |> <| redo_stack := [] |> in
  if MAX_UNDO_STACK <? length stack then s <| undo_stack ::= tail |> else s.
(* services_editor_vi/src/state.rs:511-529 EditorState::undo *)
Definition undo (s : t) : bool * t :=
  match EditorCore.pop (undo_stack s) with
  | None => (false, s)
  | Some (snap, rest) =>
      let current := EditorSnapshot.mk (buffer s) (cursor s) in
      (true, mark_dirty (s <| undo_stack := rest |> <| redo_stack ::= λ l, l ++ [current] |>
               <| buffer := EditorSnapshot.buffer snap |> <| cursor := EditorSnapshot.cursor snap |>))
  end.
(* services_editor_vi/src/state.rs:531-549 EditorState::redo *)
Definition redo (s : t) : bool * t :=
  match EditorCore.pop (redo_stack s) with
  | None => (false, s)
  | Some (snap, rest) =>
      let current := EditorSnapshot.mk (buffer s) (cursor s) in
      (true, mark_dirty (s <| redo_stack := rest |> <| undo_stack ::= λ l, l ++ [current] |>
               <| buffer := EditorSnapshot.buffer snap |> <| cursor := EditorSnapshot.cursor snap |>))
  end.

(** *** Lines to redraw *)
(* services_editor_vi/src/state.rs:551-554 EditorState::mark_line_dirty *)
Definition mark_line_dirty (line : nat) (s : t) : t := s <| dirty_lines ::= union {[ line ]} |>.
(* services_editor_vi/src/state.rs:556-561 EditorState::mark_lines_dirty *)
Definition mark_lines_dirty (start end_ : nat) (s : t) : t :=
  let stop := Nat.min end_ (TextBuffer.line_count (buffer s) - 1) in
  s <| dirty_lines ::= union (list_to_set (seq start (S stop - start))) |>.
(* services_editor_vi/src/state.rs:563-566 EditorState::mark_cursor_dirty *)
Definition mark_cursor_dirty (s : t) : t := s <| cursor_dirty := true |>.
(** A [BTreeSet] iterates in order. *)
(* services_editor_vi/src/state.rs:582-585 EditorState::get_dirty_lines *)
Definition get_dirty_lines (s : t) : list nat := merge_sort (≤) (elements (dirty_lines s)).
(* services_editor_vi/src/state.rs:568-573 EditorState::take_dirty_lines *)
Definition take_dirty_lines (s : t) : list nat * t := (get_dirty_lines s, s <| dirty_lines := ∅ |>).
(* services_editor_vi/src/state.rs:575-580 EditorState::take_cursor_dirty *)
Definition take_cursor_dirty (s : t) : bool * t := (cursor_dirty s, s <| cursor_dirty := false |>).
(* services_editor_vi/src/state.rs:587-593 EditorState::mark_all_dirty *)
Definition mark_all_dirty (viewport_lines : nat) (s : t) : t :=
  s <| dirty_lines ::= union (list_to_set (seq 0 (Nat.min viewport_lines (TextBuffer.line_count (buffer s))))) |>
    <| cursor_dirty := true |>.
End EditorState.
End Vi.
