(* ===== verification/ViEditor.v ===== *)
(** * The vi-like editor component: commands, documents and views

    [services_editor_vi/src]: the command line, the documents that an I/O handler opens and saves
    (in the journaled storage, through a file-system view), the status line, and the editor that
    turns key events into changes of its state and publishes two views.  Identifiers that an
    operation draws are fields of its argument [Draws]. *)

From S2P Require Import Prelude Debug CoreTypes Storage Input Editor Text Views FsView EditorVi.
Open Scope string_scope.
Open Scope list_scope.
Open Scope nat_scope.

(** Text of a literal. *)
Notation str := Str.of_string.
(** [" — "] *)
Definition em_dash : Str.t := [32; 8212; 32]%N.

(** ** Commands ([services_editor_vi/src/commands.rs]) *)

Module ViCommandError.
(* services_editor_vi/src/commands.rs:7-13 CommandError *)
Inductive t := UnknownCommand (cmd : Str.t) | InvalidSyntax (msg : Str.t) | UnsavedChanges.
#[global] Instance eq_dec : EqDecision t.
Proof. solve_decision. Defined.
(* services_editor_vi/src/commands.rs:15-25 CommandError::fmt *)
Definition display (e : t) : Str.t :=
  match e with
  | UnknownCommand cmd => str "Unknown command: " ++ cmd
  | InvalidSyntax msg => str "Invalid syntax: " ++ msg
  | UnsavedChanges => str "Cannot quit: unsaved changes (use :q! to force)"
  end.
End ViCommandError.

Module ViCommand.
(* services_editor_vi/src/commands.rs:27-42 Command *)
Inductive t :=
| Write | WriteAs (path : Str.t) | Edit (path : Str.t) (force : bool) | Quit | ForceQuit | WriteQuit.
#[global] Instance eq_dec : EqDecision t.
Proof. solve_decision. Defined.
Definition one_of (c : Str.t) (names : list string) : bool := existsb (λ n, bool_decide (c = str n)) names.
(* services_editor_vi/src/commands.rs:48-93 CommandParser::parse *)
Definition parse (cmd : Str.t) : outcome (result t ViCommandError.t) :=
  let trimmed := Str.trim cmd in
  if bool_decide (trimmed = []) then Return (Err (ViCommandError.InvalidSyntax (str "Empty command")))
  else
    let parts := split_whitespace trimmed in
    command ← expect (parts !! 0);
    let path := join_with [32%N] (tail parts) in
    let has_path := 1 <? length parts in
    Return (
      if one_of command ["w"; "write"] then if has_path then Ok (WriteAs path) else Ok Write
      else if one_of command ["e"; "edit"] then
        if has_path then Ok (Edit path false)
        else Err (ViCommandError.InvalidSyntax (str "Usage: :e <path>"))
      else if one_of command ["e!"; "edit!"] then
        if has_path then Ok (Edit path true)
        else Err (ViCommandError.InvalidSyntax (str "Usage: :e! <path>"))
      else if one_of command ["q"; "quit"] then Ok Quit
      else if one_of command ["q!"; "quit!"] then Ok ForceQuit
      else if one_of command ["wq"; "x"] then Ok WriteQuit
      else Err (ViCommandError.UnknownCommand command)).
End ViCommand.

(** ** Documents ([services_editor_vi/src/io.rs]) *)

Module IoError.
(* services_editor_vi/src/io.rs:12-19 IoError *)
Inductive t := NotFound | PermissionDenied (s : Str.t) | StorageError (s : Str.t) | InvalidUtf8.
#[global] Instance eq_dec : EqDecision t.
Proof. solve_decision. Defined.
(* services_editor_vi/src/io.rs:21-30 IoError::fmt *)
Definition display (e : t) : Str.t :=
  match e with
  | NotFound => str "Document not found"
  | PermissionDenied s => str "Permission denied: " ++ s
  | StorageError s => str "Storage error: " ++ s
  | InvalidUtf8 => str "Invalid UTF-8 content"
  end.
End IoError.

Module DocumentHandle.
(* services_editor_vi/src/io.rs:32-62 DocumentHandle *)
Record t := new {
  object_id : ObjectId.t;
  version_id : VersionId.t;
  path_label : option Str.t;
  can_update_link : bool
}.
#[global] Instance eq_dec : EqDecision t.
Proof. solve_decision. Defined.
End DocumentHandle.

Module OpenOptions.
(* services_editor_vi/src/io.rs:64-71 OpenOptions *)
Record t := mk { path : option Str.t; object_id : option ObjectId.t }.
#[global] Instance rebuild_t : Rebuild t := λ o, mk (path o) (object_id o).
(* services_editor_vi/src/io.rs:74-79 OpenOptions::new *)
Definition new : t := mk None None.
(* services_editor_vi/src/io.rs:81-84 OpenOptions::with_path *)
Definition with_path (p : Str.t) (o : t) : t := o <| path := Some p |>.
(* services_editor_vi/src/io.rs:86-89 OpenOptions::with_object *)
Definition with_object (id : ObjectId.t) (o : t) : t := o <| object_id := Some id |>.
End OpenOptions.

Module SaveResult.
(* services_editor_vi/src/io.rs:98-111 SaveResult *)
Record t := new {
  new_version_id : VersionId.t;
  link_updated : bool;
  message : Str.t;
  object_id : option ObjectId.t
}.
End SaveResult.

Module OpenResult.
(* services_editor_vi/src/io.rs:113-118 OpenResult *)
Record t := mk { content : Str.t; handle : DocumentHandle.t }.
End OpenResult.

(** The identifiers one operation of the editor may draw. *)
Module Draws.
Record t := mk { tx : TransactionId.t; object : ObjectId.t; version : VersionId.t; other : ObjectId.t }.
End Draws.

(* services_editor_vi/src/io.rs:120-126 EditorIo *)
Class EditorIo (I : Type) := {
  io_open : Draws.t → OpenOptions.t → I → result OpenResult.t IoError.t * I;
  io_save : Draws.t → DocumentHandle.t → Str.t → I → result SaveResult.t IoError.t * I;
  io_save_as : Draws.t → Str.t → Str.t → I → result SaveResult.t IoError.t * I
}.

Module StorageEditorIo.
(* services_editor_vi/src/io.rs:128-133 StorageEditorIo *)
Record t := mk {
  storage : JournaledStorage.t;
  fs_view : option FileSystemViewService.t;
  root : option DirectoryView.t
}.
#[global] Instance rebuild_t : Rebuild t := λ i, mk (storage i) (fs_view i) (root i).
(* services_editor_vi/src/io.rs:136-142 StorageEditorIo::new *)
Definition new (s : JournaledStorage.t) : t := mk s None None.
(* services_editor_vi/src/io.rs:144-154 StorageEditorIo::with_fs_view *)
Definition with_fs_view (s : JournaledStorage.t) (fs : FileSystemViewService.t) (root : DirectoryView.t) : t :=
  mk s (Some fs) (Some root).
(* services_editor_vi/src/io.rs:160-165 StorageEditorIo::map_tx_error *)
Definition map_tx_error (e : TransactionError.t) : IoError.t :=
  match e with
  | TransactionError.ObjectNotFound _ => IoError.NotFound
  | other => IoError.StorageError (str (TransactionError.display other))
  end.

Section with_format.
Context `{UuidFormat}.

(** The object that the options name. *)
(* services_editor_vi/src/io.rs:170-193 StorageEditorIo::open *)
Definition locate (options : OpenOptions.t) (i : t) : result ObjectId.t IoError.t :=
  match OpenOptions.object_id options, OpenOptions.path options with
  | Some id, _ => Ok id
  | None, Some path =>
      match fs_view i, root i with
      | None, _ => Err (IoError.PermissionDenied (str "No fs_view available"))
      | _, None => Err (IoError.PermissionDenied (str "No root directory"))
      | Some fs, Some root =>
          match FileSystemViewService.open root path fs with
          | Ok id => Ok id
          | Err (OperationError.NotFound _) => Err IoError.NotFound
          | Err (OperationError.AccessDenied reason) => Err (IoError.PermissionDenied reason)
          | Err e => Err (IoError.StorageError (OperationError.display e))
          end
      end
  | None, None => Err IoError.NotFound
  end.
(** A failed read returns early and leaves its transaction open. *)
(* services_editor_vi/src/io.rs:169-219 StorageEditorIo::open *)
Definition open (d : Draws.t) (options : OpenOptions.t) (i : t) : result OpenResult.t IoError.t * t :=
  match locate options i with
  | Err e => (Err e, i)
  | Ok object_id =>
      match JournaledStorage.begin_transaction (Draws.tx d) (storage i) with
      | (Err e, s) => (Err (IoError.StorageError (str (TransactionError.display e))), i <| storage := s |>)
      | (Ok tx, s) =>
          match JournaledStorage.read tx object_id s with
          | Err e => (Err (map_tx_error e), i <| storage := s |>)
          | Ok version_id =>
              match JournaledStorage.read_data tx object_id s with
              | Err e => (Err (map_tx_error e), i <| storage := s |>)
              | Ok data =>
                  let i := i <| storage := (JournaledStorage.rollback (tx, s)).2.2 |> in
                  match Utf8.from_utf8 data with
                  | None => (Err IoError.InvalidUtf8, i)
                  | Some content =>
                      (Ok (OpenResult.mk content
                             (DocumentHandle.new object_id version_id (OpenOptions.path options)
                                (bool_decide (is_Some (fs_view i))))), i)
                  end
              end
          end
      end
  end.
(** One transaction that writes one object. *)
(* services_editor_vi/src/io.rs:222-231 StorageEditorIo::save *)
Definition store (d : Draws.t) (o : ObjectId.t) (content : Str.t) (i : t)
    : result VersionId.t IoError.t * t :=
  match JournaledStorage.begin_transaction (Draws.tx d) (storage i) with
  | (Err e, s) => (Err (IoError.StorageError (str (TransactionError.display e))), i <| storage := s |>)
  | (Ok tx, s) =>
      match JournaledStorage.write (Draws.version d) o (Utf8.as_bytes content) (tx, s) with
      | (Err e, (_, s)) => (Err (map_tx_error e), i <| storage := s |>)
      | (Ok v, ts) =>
          match JournaledStorage.commit ts with
          | (Err e, (_, s)) => (Err (map_tx_error e), i <| storage := s |>)
          | (Ok _, (_, s)) => (Ok v, i <| storage := s |>)
          end
      end
  end.
(* services_editor_vi/src/io.rs:221-239 StorageEditorIo::save *)
Definition save (d : Draws.t) (handle : DocumentHandle.t) (content : Str.t) (i : t)
    : result SaveResult.t IoError.t * t :=
  match store d (DocumentHandle.object_id handle) content i with
  | (Err e, i) => (Err e, i)
  | (Ok v, i) =>
      (Ok (SaveResult.new v false (str "Saved successfully") (Some (DocumentHandle.object_id handle))), i)
  end.
(** The last piece of the path is linked in the root. *)
(* services_editor_vi/src/io.rs:241-280 StorageEditorIo::save_as *)
Definition save_as (d : Draws.t) (path content : Str.t) (i : t) : result SaveResult.t IoError.t * t :=
  match fs_view i, root i with
  | None, _ => (Err (IoError.PermissionDenied (str "No fs_view available")), i)
  | _, None => (Err (IoError.PermissionDenied (str "No root directory")), i)
  | Some fs, Some root =>
      match store d (Draws.object d) content i with
      | (Err e, i) => (Err e, i)
      | (Ok version_id, i) =>
          let name := default path (last (Slash.split PathResolver.slash path)) in
          match FileSystemViewService.link name (Draws.object d) ObjectKind.Blob (root, fs) with
          | (Err e, (root, fs)) =>
              (Err (IoError.StorageError (str "Failed to link file: " ++ OperationError.display e)),
               mk (storage i) (Some fs) (Some root))
          | (Ok _, (root, fs)) =>
              (Ok (SaveResult.new version_id true (str "Saved as: " ++ path) (Some (Draws.object d))),
               mk (storage i) (Some fs) (Some root))
          end
      end
  end.
(* services_editor_vi/src/io.rs:168-281 EditorIo for StorageEditorIo *)
#[global] Instance storage_io : EditorIo t := {| io_open := open; io_save := save; io_save_as := save_as |}.
End with_format.
End StorageEditorIo.

(** ** Rendering ([services_editor_vi/src/render.rs]) *)

Module EditorView.
Import Vi.
(* services_editor_vi/src/render.rs:8-20 EditorView *)
Record t := new { viewport_lines : nat }.
(* services_editor_vi/src/render.rs:173-177 EditorView::default *)
Definition default : t := new 20.
(* services_editor_vi/src/render.rs:125-133 get_mode_hint *)
Definition get_mode_hint (m : EditorMode.t) : Str.t :=
  match m with
  | EditorMode.Normal => str "Normal" ++ em_dash ++ str "i=Insert :w=Save :q=Quit :help"
  | EditorMode.Insert => str "Insert" ++ em_dash ++ str "Esc=Normal"
  | EditorMode.Command => str "Command" ++ em_dash ++ str "Enter=Run Esc=Cancel :w :q :wq"
  | EditorMode.Search => str "Search" ++ em_dash ++ str "Enter=Find Esc=Cancel"
  end.
Definition COMMANDS : list string := ["e"; "help"; "q"; "w"; "wq"].
(* services_editor_vi/src/render.rs:135-171 get_command_suggestions *)
Definition get_command_suggestions (buffer : Str.t) : list Str.t :=
  match buffer with
  | [] => [str "e"; str "help"; str "q"]
  | _ =>
      let cmds := Str.of_string <$> COMMANDS in
      let prefix_matches := filter (λ c, Str.starts_with buffer c = true) cmds in
      let substring_matches :=
        filter (λ c, Str.starts_with buffer c = false ∧ contains buffer c = true) cmds in
      take 3 (stable_sort Utf8.leb prefix_matches ++ stable_sort Utf8.leb substring_matches)
  end.
(** The character index is compared with the byte column of the cursor. *)
(* services_editor_vi/src/render.rs:50-64 EditorView::render_line_with_cursor *)
Definition render_line_with_cursor (line : Str.t) (col : nat) : Str.t :=
  concat (imap (λ i ch, if i =? col then str "[" ++ [ch] ++ str "]" else [ch]) line)
  ++ (if col =? Str.len line then str "[ ]" else []).
(* services_editor_vi/src/render.rs:66-117 EditorView::render_status_line *)
Definition render_status_line (s : EditorState.t) : Str.t :=
  str (EditorMode.as_str (EditorState.mode s)) ++ [32%N]
  ++ match EditorState.document_label s with
     | Some label => label ++ (if EditorState.dirty s then str "*" else []) ++ [32%N]
     | None => if EditorState.dirty s then str "[No Name]* " else []
     end
  ++ (if bool_decide (EditorState.mode s = EditorMode.Command)
      then str ":" ++ EditorState.command_buffer s else [])
  ++ (if bool_decide (EditorState.mode s = EditorMode.Search)
      then str "/" ++ EditorState.search_query s else [])
  ++ match EditorState.status_message s with
     | _ :: _ => str " | " ++ EditorState.status_message s
     | [] =>
         str " | " ++ get_mode_hint (EditorState.mode s)
         ++ (if bool_decide (EditorState.mode s = EditorMode.Command) then
               match get_command_suggestions (EditorState.command_buffer s) with
               | [] => []
               | suggestions => str " | Suggestions: " ++ join_with [32%N] suggestions
               end
             else [])
     end.
(* services_editor_vi/src/render.rs:119-122 EditorView::render_status *)
Definition render_status (s : EditorState.t) : Str.t := render_status_line s.
(* services_editor_vi/src/render.rs:22-48 EditorView::render *)
Definition render (v : t) (s : EditorState.t) : Str.t :=
  let cursor_pos := Cursor.position (EditorState.cursor s) in
  concat ((λ row,
    match TextBuffer.line row (EditorState.buffer s) with
    | Some line =>
        if row =? Position.row cursor_pos then render_line_with_cursor line (Position.col cursor_pos) else line
    | None => str "~"
    end ++ [10%N]) <$> seq 0 (viewport_lines v))
  ++ render_status_line s.
End EditorView.

(** ** The editor ([services_editor_vi/src/editor.rs]) *)

Module EditorError.
(* services_editor_vi/src/editor.rs:17-25 EditorError *)
Inductive t :=
| Io (e : IoError.t)
| Command (e : ViCommandError.t)
| NotSupported (s : Str.t)
| InvalidState (s : Str.t)
| ViewError (s : Str.t).
#[global] Instance eq_dec : EqDecision t.
Proof. solve_decision. Defined.
(* services_editor_vi/src/editor.rs:27-37 EditorError::fmt *)
Definition display (e : t) : Str.t :=
  match e with
  | Io e => str "I/O error: " ++ IoError.display e
  | Command e => str "Command error: " ++ ViCommandError.display e
  | NotSupported s => str "Not supported: " ++ s
  | InvalidState s => str "Invalid state: " ++ s
  | ViewError s => str "View error: " ++ s
  end.
End EditorError.

Module EditorAction.
(* services_editor_vi/src/editor.rs:54-63 EditorAction *)
Inductive t := Continue | Quit | Saved (v : VersionId.t).
#[global] Instance eq_dec : EqDecision t.
Proof. solve_decision. Defined.
End EditorAction.

Module ViKeys.
(* services_editor_vi/src/editor.rs:538-601 Editor::key_to_char *)
Definition key_to_char (event : KeyEvent.t) : option N :=
  let shift := Modifiers.is_shift (KeyEvent.modifiers event) in
  let key (plain shifted : N) : option N := Some (if shift then shifted else plain) in
  match KeyEvent.code event with
  | KeyCode.A => key 97 65 | KeyCode.B => key 98 66 | KeyCode.C => key 99 67 | KeyCode.D => key 100 68
  | KeyCode.E => key 101 69 | KeyCode.F => key 102 70 | KeyCode.G => key 103 71 | KeyCode.H => key 104 72
  | KeyCode.I => key 105 73 | KeyCode.J => key 106 74 | KeyCode.K => key 107 75 | KeyCode.L => key 108 76
  | KeyCode.M => key 109 77 | KeyCode.N => key 110 78 | KeyCode.O => key 111 79 | KeyCode.P => key 112 80
  | KeyCode.Q => key 113 81 | KeyCode.R => key 114 82 | KeyCode.S => key 115 83 | KeyCode.T => key 116 84
  | KeyCode.U => key 117 85 | KeyCode.V => key 118 86 | KeyCode.W => key 119 87 | KeyCode.X => key 120 88
  | KeyCode.Y => key 121 89 | KeyCode.Z => key 122 90
  | KeyCode.Num0 => key 48 41 | KeyCode.Num1 => key 49 33 | KeyCode.Num2 => key 50 64
  | KeyCode.Num3 => key 51 35 | KeyCode.Num4 => key 52 36 | KeyCode.Num5 => key 53 37
  | KeyCode.Num6 => key 54 94 | KeyCode.Num7 => key 55 38 | KeyCode.Num8 => key 56 42
  | KeyCode.Num9 => key 57 40
  | KeyCode.Space => Some 32
  | KeyCode.Period => key 46 62 | KeyCode.Comma => key 44 60 | KeyCode.Slash => key 47 63
  | KeyCode.Semicolon => key 59 58 | KeyCode.Quote => key 39 34 | KeyCode.LeftBracket => key 91 123
  | KeyCode.RightBracket => key 93 125 | KeyCode.Backslash => key 92 124 | KeyCode.Minus => key 45 95
  | KeyCode.Equal => key 61 43 | KeyCode.Grave => key 96 126
  | _ => None
  end%N.
End ViKeys.

Module ViEditor.
Import Vi EditorAction ViKeys.

Section with_io.
Context `{UuidFormat} {I : Type} `{EditorIo I}.

(* services_editor_vi/src/editor.rs:65-77 Editor *)
Record t := mk {
  state : EditorState.t;
  document : option DocumentHandle.t;
  io : option I;
  view : EditorView.t;
  main_view_handle : option ViewHandleCap.t;
  status_view_handle : option ViewHandleCap.t;
  main_view_revision : N;
  status_view_revision : N
}.
#[global] Instance rebuild_t : Rebuild t := λ e,
  mk (state e) (document e) (io e) (view e) (main_view_handle e) (status_view_handle e)
     (main_view_revision e) (status_view_revision e).
(* services_editor_vi/src/editor.rs:80-92 Editor::new *)
Definition new : t := mk EditorState.new None None EditorView.default None None 1 1.
(* services_editor_vi/src/editor.rs:94-106 Editor::with_viewport *)
Definition with_viewport (viewport_lines : nat) : t :=
  mk EditorState.new None None (EditorView.new viewport_lines) None None 1 1.
(* services_editor_vi/src/editor.rs:108-112 Editor::set_view_handles *)
Definition set_view_handles (main_view status_view : ViewHandleCap.t) (e : t) : t :=
  e <| main_view_handle := Some main_view |> <| status_view_handle := Some status_view |>.
(* services_editor_vi/src/editor.rs:114-117 Editor::set_io *)
Definition set_io (i : I) (e : t) : t := e <| io := Some i |>.
Definition say (m : Str.t) (e : t) : t := e <| state ::= EditorState.set_status_message m |>.
(* services_editor_vi/src/editor.rs:170-175 Editor::new_document *)
Definition new_document (e : t) : t :=
  say (str "New document") (e <| state := EditorState.new |> <| document := None |>).
(* services_editor_vi/src/editor.rs:177-184 Editor::load_document *)
Definition load_document (content : Str.t) (handle : DocumentHandle.t) (e : t) : t :=
  let label := DocumentHandle.path_label handle in
  let e := e <| state ::= EditorState.load_content content |> in
  let e := e <| state ::= EditorState.set_document_label label |> in
  say (str "Document loaded") (e <| document := Some handle |>).
(* services_editor_vi/src/editor.rs:134-168 Editor::open_with *)
Definition open_with (d : Draws.t) (options : OpenOptions.t) (e : t) : result unit EditorError.t * t :=
  match io e with
  | None => (Err (EditorError.NotSupported (str "No I/O handler configured")), e)
  | Some i =>
      let '(r, i) := io_open d options i in
      let e := e <| io := Some i |> in
      match r with
      | Ok opened => (Ok tt, load_document (OpenResult.content opened) (OpenResult.handle opened) e)
      | Err IoError.NotFound =>
          match OpenOptions.path options with
          | Some path =>
              (Ok tt, say (str "[New File] " ++ path) (e <| state ::= EditorState.set_document_label (Some path) |>))
          | None => (Ok tt, say (str "[New File]") e)
          end
      | Err (IoError.PermissionDenied reason) =>
          (Err (EditorError.Io (IoError.PermissionDenied reason)), say (str "Permission denied: " ++ reason) e)
      | Err err => (Err (EditorError.Io err), say (str "Error: " ++ IoError.display err) e)
      end
  end.

(** *** Saving *)
(* services_editor_vi/src/editor.rs:480-514 Editor::save_document *)
Definition save_document (d : Draws.t) (e : t) : result VersionId.t EditorError.t * t :=
  match io e, document e with
  | Some i, Some handle =>
      let content := TextBuffer.as_string (EditorState.buffer (state e)) in
      let '(r, i) := io_save d handle content i in
      let e := e <| io := Some i |> in
      match r with
      | Err err => (Err (EditorError.Io err), e)
      | Ok saved =>
          let new_handle :=
            DocumentHandle.new (default (DocumentHandle.object_id handle) (SaveResult.object_id saved))
              (SaveResult.new_version_id saved) (DocumentHandle.path_label handle)
              (DocumentHandle.can_update_link handle) in
          let e := e <| document := Some new_handle |> <| state ::= EditorState.set_dirty false |> in
          (Ok (SaveResult.new_version_id saved), say (SaveResult.message saved) e)
      end
  | None, None =>
      let new_version := Draws.version d in
      let e := e <| state ::= EditorState.set_dirty false |> in
      (Ok new_version, say (str ("Saved version " +:+ VersionId.display new_version)) e)
  | Some _, None =>
      (Err (EditorError.InvalidState (str "No file name")), say (str "No file name (use :w <filename>)") e)
  | None, Some _ =>
      (Err (EditorError.NotSupported (str "No I/O handler configured")), say (str "No I/O handler configured") e)
  end.
(* services_editor_vi/src/editor.rs:202-208 Editor::save_current_document *)
Definition save_current_document (d : Draws.t) (e : t) : result VersionId.t EditorError.t * t :=
  save_document d e.
(* services_editor_vi/src/editor.rs:516-536 Editor::save_document_as *)
Definition save_document_as (d : Draws.t) (path : Str.t) (e : t) : result VersionId.t EditorError.t * t :=
  match io e with
  | None => (Err (EditorError.NotSupported (str "No I/O handler configured")), e)
  | Some i =>
      let content := TextBuffer.as_string (EditorState.buffer (state e)) in
      let '(r, i) := io_save_as d path content i in
      let e := e <| io := Some i |> in
      match r with
      | Err err => (Err (EditorError.Io err), e)
      | Ok saved =>
          let new_handle :=
            DocumentHandle.new (default (Draws.other d) (SaveResult.object_id saved))
              (SaveResult.new_version_id saved) (Some path) true in
          let e := e <| document := Some new_handle |> <| state ::= EditorState.set_dirty false |> in
          (Ok (SaveResult.new_version_id saved), say (SaveResult.message saved) e)
      end
  end.
(* services_editor_vi/src/editor.rs:434-478 Editor::execute_command *)
Definition execute_command (d : Draws.t) (cmd_str : Str.t) (e : t)
    : outcome (result EditorAction.t EditorError.t * t) :=
  parsed ← ViCommand.parse cmd_str;
  Return match parsed with
  | Err err => (Err (EditorError.Command err), e)
  | Ok ViCommand.Write =>
      let '(r, e) := save_document d e in (map_ok Saved r, e)
  | Ok (ViCommand.WriteAs path) =>
      let '(r, e) := save_document_as d path e in (map_ok Saved r, e)
  | Ok (ViCommand.Edit path force) =>
      if EditorState.dirty (state e) && negb force
      then (Ok Continue, say (str "No write since last change (use :w or :e! to discard)") e)
      else let '(r, e) := open_with d (OpenOptions.with_path path OpenOptions.new) e in
           (map_ok (λ _, Continue) r, e)
  | Ok ViCommand.Quit =>
      if EditorState.dirty (state e)
      then (Ok Continue, say (str "Unsaved changes" ++ em_dash ++ str "use :w or :q!") e)
      else (Ok Quit, e)
  | Ok ViCommand.ForceQuit => (Ok Quit, e)
  | Ok ViCommand.WriteQuit =>
      let '(r, e) := save_document d e in (map_ok (λ _, Quit) r, e)
  end.

(** *** Modes *)
Definition on_state (f : EditorState.t → EditorState.t) (e : t) : result EditorAction.t EditorError.t * t :=
  (Ok Continue, e <| state ::= f |>).
(* services_editor_vi/src/editor.rs:210-301 Editor::handle_normal_mode *)
Definition handle_normal_mode (event : KeyEvent.t) (e : t)
    : outcome (result EditorAction.t EditorError.t * t) :=
  let plain := Modifiers.is_empty (KeyEvent.modifiers event) in
  let s := state e in
  match KeyEvent.code event with
  | KeyCode.H | KeyCode.Left =>
      Return (on_state (if plain then EditorState.move_cursor_left else id) e)
  | KeyCode.J | KeyCode.Down =>
      Return (on_state (if plain then EditorState.move_cursor_down else id) e)
  | KeyCode.K | KeyCode.Up =>
      Return (on_state (if plain then EditorState.move_cursor_up else id) e)
  | KeyCode.L | KeyCode.Right =>
      Return (on_state (if plain then EditorState.move_cursor_right else id) e)
  | KeyCode.I =>
      Return (on_state (if plain
        then λ s, EditorState.say "" (EditorState.set_mode EditorMode.Insert (EditorState.save_undo_snapshot s))
        else id) e)
  | KeyCode.X =>
      if plain then
        let s := EditorState.save_undo_snapshot s in
        let pos := Cursor.position (EditorState.cursor s) in
        '(deleted, b) ← TextBuffer.delete_char pos (EditorState.buffer s);
        let s := s <| EditorState.buffer := b |> in
        let s := if deleted : bool then EditorState.mark_line_dirty (Position.row pos) (EditorState.mark_dirty s) else s in
        Return (Ok Continue, e <| state := s |>)
      else Return (on_state id e)
  | KeyCode.U =>
      Return (on_state (if plain
        then λ s, match EditorState.undo s with
                  | (true, s) => EditorState.mark_all_dirty 100 (EditorState.say "Undo" s)
                  | (false, s) => EditorState.say "Already at oldest change" s
                  end
        else id) e)
  | KeyCode.R =>
      Return (on_state (if Modifiers.is_ctrl (KeyEvent.modifiers event)
        then λ s, match EditorState.redo s with
                  | (true, s) => EditorState.mark_all_dirty 100 (EditorState.say "Redo" s)
                  | (false, s) => EditorState.say "Already at newest change" s
                  end
        else id) e)
  | KeyCode.Semicolon =>
      Return (on_state (if Modifiers.is_shift (KeyEvent.modifiers event)
        then λ s, EditorState.say "" (EditorState.set_mode EditorMode.Command s) else id) e)
  | KeyCode.Slash =>
      Return (on_state (if plain
        then λ s, EditorState.say "" (EditorState.set_mode EditorMode.Search s) else id) e)
  | KeyCode.N =>
      if plain then
        '(found, s) ← EditorState.find_next true s;
        Return (Ok Continue,
                e <| state := EditorState.say (if found : bool then "Next match" else "Pattern not found") s |>)
      else Return (on_state id e)
  | _ => Return (on_state id e)
  end.
(* services_editor_vi/src/editor.rs:344-357 Editor::handle_insert_mode *)
Definition insert_typed (event : KeyEvent.t) (e : t) : outcome (result EditorAction.t EditorError.t * t) :=
  let s := state e in
  let pos := Cursor.position (EditorState.cursor s) in
  match key_to_char event with
  | None => Return (Ok Continue, e)
  | Some ch =>
      '(ok, b) ← TextBuffer.insert_char pos ch (EditorState.buffer s);
      let s := s <| EditorState.buffer := b |> in
      let s :=
        if ok : bool then
          let s := EditorState.mark_line_dirty (Position.row pos) (EditorState.mark_dirty s) in
          s <| EditorState.cursor := Cursor.mk (Position.new (Position.row pos) (Position.col pos + 1)) |>
        else s in
      Return (Ok Continue, e <| state := s |>)
  end.
(* services_editor_vi/src/editor.rs:303-359 Editor::handle_insert_mode *)
Definition handle_insert_mode (event : KeyEvent.t) (e : t)
    : outcome (result EditorAction.t EditorError.t * t) :=
  let s := state e in
  let pos := Cursor.position (EditorState.cursor s) in
  match KeyEvent.code event with
  | KeyCode.Escape => Return (on_state (EditorState.set_mode EditorMode.Normal) e)
  | KeyCode.Enter =>
      '(ok, b) ← TextBuffer.insert_newline pos (EditorState.buffer s);
      let s := s <| EditorState.buffer := b |> in
      let s :=
        if ok : bool then
          let s := EditorState.mark_dirty s in
          let viewport_end := Position.row pos + 20 in
          let s := EditorState.mark_lines_dirty (Position.row pos) viewport_end s in
          s <| EditorState.cursor := Cursor.mk (Position.new (Position.row pos + 1) 0) |>
        else s in
      Return (Ok Continue, e <| state := s |>)
  | KeyCode.Backspace =>
      '(moved, b) ← TextBuffer.backspace pos (EditorState.buffer s);
      let s := s <| EditorState.buffer := b |> in
      let s :=
        match moved with
        | Some new_pos =>
            let s := EditorState.mark_dirty s in
            let s :=
              if Position.row new_pos <? Position.row pos
              then EditorState.mark_lines_dirty (Position.row new_pos) (Position.row new_pos + 20) s
              else EditorState.mark_line_dirty (Position.row pos) s in
            s <| EditorState.cursor := Cursor.mk new_pos |>
        | None => s
        end in
      Return (Ok Continue, e <| state := s |>)
  | _ => insert_typed event e
  end.
(* services_editor_vi/src/editor.rs:361-393 Editor::handle_command_mode *)
Definition handle_command_mode (d : Draws.t) (event : KeyEvent.t) (e : t)
    : outcome (result EditorAction.t EditorError.t * t) :=
  match KeyEvent.code event with
  | KeyCode.Escape =>
      Return (on_state (λ s, EditorState.clear_command (EditorState.set_mode EditorMode.Normal s)) e)
  | KeyCode.Enter =>
      let cmd_str := EditorState.command_buffer (state e) in
      let e := e <| state ::= EditorState.clear_command |> in
      let e := e <| state ::= EditorState.set_mode EditorMode.Normal |> in
      execute_command d cmd_str e
  | KeyCode.Backspace => Return (on_state EditorState.backspace_command e)
  | _ =>
      Return (on_state (match key_to_char event with
                        | Some ch => EditorState.append_to_command ch
                        | None => id
                        end) e)
  end.
(* services_editor_vi/src/editor.rs:395-432 Editor::handle_search_mode *)
Definition handle_search_mode (event : KeyEvent.t) (e : t)
    : outcome (result EditorAction.t EditorError.t * t) :=
  match KeyEvent.code event with
  | KeyCode.Escape =>
      Return (on_state (λ s, EditorState.clear_search (EditorState.set_mode EditorMode.Normal s)) e)
  | KeyCode.Enter =>
      '(found, s) ← EditorState.find_next true (state e);
      let s := EditorState.set_mode EditorMode.Normal s in
      Return (Ok Continue,
              e <| state := EditorState.say (if found : bool then "Match found" else "Pattern not found") s |>)
  | KeyCode.Backspace => Return (on_state EditorState.backspace_search e)
  | _ =>
      Return (on_state (match key_to_char event with
                        | Some ch => EditorState.append_to_search ch
                        | None => id
                        end) e)
  end.
(* services_editor_vi/src/editor.rs:186-200 Editor::process_input *)
Definition process_input (d : Draws.t) (event : InputEvent.t) (e : t)
    : outcome (result EditorAction.t EditorError.t * t) :=
  match InputEvent.as_key event with
  | Some ke =>
      if KeyEvent.is_pressed ke then
        match EditorState.mode (state e) with
        | EditorMode.Normal => handle_normal_mode ke e
        | EditorMode.Insert => handle_insert_mode ke e
        | EditorMode.Command => handle_command_mode d ke e
        | EditorMode.Search => handle_search_mode ke e
        end
      else Return (Ok Continue, e)
  | None => Return (Ok Continue, e)
  end.

(** *** Views *)
(* services_editor_vi/src/editor.rs:603-606 Editor::render *)
Definition render (e : t) : Str.t := EditorView.render (view e) (state e).
(* services_editor_vi/src/editor.rs:608-611 Editor::get_content *)
Definition get_content (e : t) : Str.t := TextBuffer.as_string (EditorState.buffer (state e)).
(** The frame of the main view. *)
(* services_editor_vi/src/editor.rs:623-639 Editor::publish_views *)
Definition main_frame (handle : ViewHandleCap.t) (timestamp_ns : N) (e : t) : ViewFrame.t :=
  let cursor_pos := Cursor.position (EditorState.cursor (state e)) in
  ViewFrame.with_cursor (CursorPosition.new (N.of_nat (Position.row cursor_pos)) (N.of_nat (Position.col cursor_pos)))
    (ViewFrame.new (ViewHandleCap.view_id handle) ViewKind.TextBuffer (main_view_revision e)
       (ViewContent.text_buffer (TextBuffer.lines (EditorState.buffer (state e)))) timestamp_ns).
(* services_editor_vi/src/editor.rs:650-659 Editor::publish_views *)
Definition status_frame (handle : ViewHandleCap.t) (timestamp_ns : N) (e : t) : ViewFrame.t :=
  ViewFrame.new (ViewHandleCap.view_id handle) ViewKind.StatusLine (status_view_revision e)
    (ViewContent.status_line (EditorView.render_status (state e))) timestamp_ns.
(* services_editor_vi/src/editor.rs:621-646 Editor::publish_views *)
Definition publish_main (host : ViewHost.t) (timestamp_ns : N) (e : t)
    : outcome (result unit EditorError.t * (t * ViewHost.t)) :=
  match main_view_handle e with
  | None => Return (Ok tt, (e, host))
  | Some handle =>
      '(r, host) ← ViewHost.publish_frame handle (main_frame handle timestamp_ns e) host;
      match r with
      | Err err => Return (Err (EditorError.ViewError (ViewHostError.display err)), (e, host))
      | Ok _ =>
          n ← add_u64 (main_view_revision e) 1;
          Return (Ok tt, (e <| main_view_revision := n |>, host))
      end
  end.
(* services_editor_vi/src/editor.rs:613-669 Editor::publish_views *)
Definition publish_views (host : ViewHost.t) (timestamp_ns : N) (e : t)
    : outcome (result unit EditorError.t * (t * ViewHost.t)) :=
  try! _, s := publish_main host timestamp_ns e in
  let '(e, host) := s in
  match status_view_handle e with
  | None => Return (Ok tt, (e, host))
  | Some handle =>
      '(r, host) ← ViewHost.publish_frame handle (status_frame handle timestamp_ns e) host;
      match r with
      | Err err => Return (Err (EditorError.ViewError (ViewHostError.display err)), (e, host))
      | Ok _ =>
          n ← add_u64 (status_view_revision e) 1;
          Return (Ok tt, (e <| status_view_revision := n |>, host))
      end
  end.
(* services_editor_vi/src/editor.rs:671-681 Editor::process_input_and_publish *)
Definition process_input_and_publish (d : Draws.t) (event : InputEvent.t) (host : ViewHost.t)
    (timestamp_ns : N) (e : t) : outcome (result EditorAction.t EditorError.t * (t * ViewHost.t)) :=
  '(r, e) ← process_input d event e;
  match r with
  | Err err => Return (Err err, (e, host))
  | Ok action =>
      '(r, s) ← publish_views host timestamp_ns e;
      Return (match r with Err err => Err err | Ok _ => Ok action end, s)
  end.
End with_io.
Arguments t : clear implicits.
End ViEditor.
