(* ===== verification/ViProps.v ===== *)
(** * Properties of the vi-like editor component

    Its text operations are those of the editor core, so the core's safety carries over: no key
    makes it panic on ASCII text.  It quits with unsaved changes only when forced, undo takes back
    an insertion session, and what it saves it opens again, less an empty last line. *)

From S2P Require Import Prelude Debug CoreTypes Storage StorageProps Input Editor EditorProps Text Views FsView EditorVi ViEditor.
Open Scope string_scope.
Open Scope list_scope.
Open Scope nat_scope.

(** ** The editor core behind the component *)

Module ViCore.
Import Vi.

Definition core_mode (m : EditorMode.t) : Editor.EditorMode.t :=
  match m with
  | EditorMode.Normal => Editor.EditorMode.Normal
  | EditorMode.Insert => Editor.EditorMode.Insert
  | EditorMode.Command => Editor.EditorMode.Command
  | EditorMode.Search => Editor.EditorMode.Search
  end.
Definition core_pos (p : Position.t) : Editor.Position.t := Editor.Position.new (Position.row p) (Position.col p).
Definition core_buf (b : TextBuffer.t) : Editor.TextBuffer.t := Editor.TextBuffer.mk (TextBuffer.lines b).
Definition core_snap (s : EditorSnapshot.t) : BufferSnapshot.t :=
  BufferSnapshot.mk (core_buf (EditorSnapshot.buffer s)) (core_pos (Cursor.position (EditorSnapshot.cursor s))).
(** The state of the core that a state of the component stands for. *)
Definition core (s : EditorState.t) : EditorCore.t :=
  EditorCore.mk (core_mode (EditorState.mode s)) (core_buf (EditorState.buffer s))
    (core_pos (Cursor.position (EditorState.cursor s))) (EditorState.dirty s)
    (EditorState.command_buffer s) (EditorState.search_query s) (EditorState.last_search s)
    (EditorState.status_message s) (core_snap <$> EditorState.undo_stack s)
    (core_snap <$> EditorState.redo_stack s).
Definition map_outcome {A B} (f : A → B) (m : outcome A) : outcome B := a ← m; Return (f a).
Definition on_snd {A B C} (f : B → C) (x : A * B) : A * C := (x.1, f x.2).

(** *** The buffer *)
Lemma core_insert_char p ch b :
  map_outcome (on_snd core_buf) (TextBuffer.insert_char p ch b)
  = Editor.TextBuffer.insert_char (core_pos p) ch (core_buf b).
Proof.
  unfold TextBuffer.insert_char, Editor.TextBuffer.insert_char. simpl.
  destruct (TextBuffer.lines b !! Position.row p) as [l|]; [|done]. destruct (_ <? _); [done|].
  by destruct (Str.insert _ _ l).
Qed.
Lemma core_insert_newline p b :
  map_outcome (on_snd core_buf) (TextBuffer.insert_newline p b)
  = Editor.TextBuffer.insert_newline (core_pos p) (core_buf b).
Proof.
  unfold TextBuffer.insert_newline, Editor.TextBuffer.insert_newline. simpl.
  destruct (TextBuffer.lines b !! Position.row p) as [l|]; [|done]. destruct (_ <? _); [done|].
  by destruct (Str.split_at _ l) as [[]|].
Qed.
Lemma core_delete_char p b :
  map_outcome (on_snd core_buf) (TextBuffer.delete_char p b)
  = Editor.TextBuffer.delete_char (core_pos p) (core_buf b).
Proof.
  unfold TextBuffer.delete_char, Editor.TextBuffer.delete_char. simpl.
  destruct (TextBuffer.lines b !! Position.row p) as [l|]; [|done]. destruct (_ <=? _); [done|].
  by destruct (Str.remove _ l).
Qed.
Lemma core_backspace p b :
  map_outcome (λ x, (core_pos <$> x.1, core_buf x.2)) (TextBuffer.backspace p b)
  = Editor.TextBuffer.backspace (core_pos p) (core_buf b).
Proof.
  unfold TextBuffer.backspace, Editor.TextBuffer.backspace. simpl.
  destruct (0 <? Position.col p).
  - destruct (TextBuffer.lines b !! Position.row p) as [l|]; [|done]. simpl. by destruct (Str.remove _ l).
  - destruct (0 <? Position.row p); [|done].
    destruct (TextBuffer.lines b !! Position.row p) as [l|]; [|done]. simpl.
    by destruct (delete (Position.row p) (TextBuffer.lines b) !! (Position.row p - 1)).
Qed.

(** *** Cursor, undo and search *)
Lemma core_clamp s : core (EditorState.clamp_cursor_col s) = EditorCore.clamp_cursor (core s).
Proof.
  unfold EditorState.clamp_cursor_col, EditorCore.clamp_cursor, TextBuffer.line_length, Editor.TextBuffer.line_length.
  simpl. by destruct (_ <? _).
Qed.
Lemma core_move_up s : core (EditorState.move_cursor_up s) = EditorCore.move_cursor_up (core s).
Proof.
  unfold EditorState.move_cursor_up, EditorCore.move_cursor_up, Cursor.row. simpl.
  destruct (0 <? _); [|done].
  exact (core_clamp (s <| EditorState.cursor ::= λ c, Cursor.set_row (Cursor.row c - 1) c |>)).
Qed.
Lemma core_move_down s : core (EditorState.move_cursor_down s) = EditorCore.move_cursor_down (core s).
Proof.
  unfold EditorState.move_cursor_down, EditorCore.move_cursor_down, Cursor.row, TextBuffer.line_count,
    Editor.TextBuffer.line_count. simpl.
  destruct (_ <? _); [|done].
  exact (core_clamp (s <| EditorState.cursor ::= λ c, Cursor.set_row (S (Cursor.row c)) c |>)).
Qed.
Lemma core_move_left s : core (EditorState.move_cursor_left s) = EditorCore.move_cursor_left (core s).
Proof. unfold EditorState.move_cursor_left, EditorCore.move_cursor_left, Cursor.col. simpl. by destruct (0 <? _). Qed.
Lemma core_move_right s : core (EditorState.move_cursor_right s) = EditorCore.move_cursor_right (core s).
Proof.
  unfold EditorState.move_cursor_right, EditorCore.move_cursor_right, TextBuffer.line_length,
    Editor.TextBuffer.line_length, Cursor.col, Cursor.row. simpl. by destruct (_ <? _).
Qed.
Lemma core_save s : core (EditorState.save_undo_snapshot s) = EditorCore.save_undo_snapshot (core s).
Proof.
  unfold EditorState.save_undo_snapshot, EditorCore.save_undo_snapshot. cbn zeta. simpl.
  rewrite !length_app, length_fmap. simpl. destruct (100 <? _); unfold core, update_field; simpl; f_equal.
  - transitivity (tail (core_snap <$> (EditorState.undo_stack s
      ++ [EditorSnapshot.mk (EditorState.buffer s) (EditorState.cursor s)]))); [by destruct (_ ++ _)|].
    by rewrite fmap_app.
  - by rewrite fmap_app.
Qed.
Lemma core_pop {A B} (f : A → B) (l : list A) :
  EditorCore.pop (f <$> l) = (λ x : A * list A, (f x.1, f <$> x.2)) <$> EditorCore.pop l.
Proof.
  unfold EditorCore.pop. rewrite fmap_last, length_fmap. destruct (last l); [|done]. simpl. by rewrite fmap_take.
Qed.
Lemma core_undo s : on_snd core (EditorState.undo s) = EditorCore.undo (core s).
Proof.
  unfold EditorState.undo, EditorCore.undo. simpl. rewrite core_pop.
  destruct (EditorCore.pop _) as [[x r]|]; [|done]. simpl. unfold on_snd, core. simpl. by rewrite fmap_app.
Qed.
Lemma core_redo s : on_snd core (EditorState.redo s) = EditorCore.redo (core s).
Proof.
  unfold EditorState.redo, EditorCore.redo. simpl. rewrite core_pop.
  destruct (EditorCore.pop _) as [[x r]|]; [|done]. simpl. unfold on_snd, core. simpl. by rewrite fmap_app.
Qed.
Lemma core_search_forward q ls row col :
  map_outcome (fmap core_pos) (EditorState.search_forward q ls row col) = EditorCore.search_forward q ls row col.
Proof.
  revert row col. induction ls as [|l ls IH]; intros row col; [done|].
  cbn [EditorState.search_forward EditorCore.search_forward].
  destruct (col <? Str.len l).
  - destruct (Str.split_at col l) as [[a r]|]; [|done]. simpl.
    destruct (Str.find q r); [done|]. apply IH.
  - simpl. apply IH.
Qed.
Lemma core_search_rows q ls row :
  core_pos <$> EditorState.search_rows q ls row = EditorCore.search_rows q ls row.
Proof.
  revert row. induction ls as [|l ls IH]; intros row; [done|]. simpl. destruct (Str.find q l); [done|]. apply IH.
Qed.
Lemma core_find_next s :
  map_outcome (on_snd core) (EditorState.find_next true s) = EditorCore.find_next (core s).
Proof.
  unfold EditorState.find_next, EditorCore.find_next. simpl.
  set (s1 := match EditorState.search_query s with [] => _ | q => _ end).
  set (e1 := match EditorState.search_query s with [] => _ | q => _ end).
  assert (e1 = on_snd core s1) as -> by (unfold e1, s1; by destruct (EditorState.search_query s)).
  destruct s1 as [[[|c q]|] s1]; try done. simpl. rewrite <-core_search_forward.
  destruct (EditorState.search_forward _ _ _ _) as [[p|]| |]; try done. simpl.
  rewrite <-core_search_rows. destruct (EditorState.search_rows _ _ _) as [p|]; [done|]. simpl.
  destruct (match EditorState.search_query s1 with [] => false | _ => true end); [done|].
  unfold TextBuffer.line, Editor.TextBuffer.line. simpl.
  destruct (TextBuffer.lines _ !! _) as [l|]; [|done].
  destruct (Str.split_at _ l) as [[h r]|]; [|done]. simpl. by destruct (Str.find _ h).
Qed.
End ViCore.

(** ** Safety *)

Module ViSafety.
Import Vi EditorAction ViKeys ViEditor ViCore EditorSafety StrSpec.

(** The parser finds a first word in every command that is not blank. *)
Lemma words_from_ne acc s :
  acc ≠ [] ∨ Exists (λ c, Str.is_whitespace c = false) s → words_from acc s ≠ [].
Proof.
  revert acc. induction s as [|c s IH]; intros acc; simpl.
  - intros [Ha|He]; [by destruct acc|by inversion He].
  - intros Hor. destruct (Str.is_whitespace c) eqn:Ec; [|apply IH; by left].
    destruct acc as [|x acc]; [|done]. apply IH. right. destruct Hor as [?|He]; [done|].
    inversion He; subst; [congruence|done].
Qed.
Lemma trim_start_cases s : Str.trim_start s = [] ∨ ∃ c r, Str.trim_start s = c :: r ∧ Str.is_whitespace c = false.
Proof. induction s as [|c s IH]; simpl; [by left|]. destruct (Str.is_whitespace c) eqn:E; [done|right; eauto]. Qed.
Lemma trim_word s : Str.trim s ≠ [] → Exists (λ c, Str.is_whitespace c = false) (Str.trim s).
Proof.
  unfold Str.trim. intros Hne. apply Exists_exists.
  destruct (trim_start_cases (reverse (Str.trim_start s))) as [E|(c & r & E & Hc)]; rewrite E in *; [done|].
  exists c. split; [|done]. rewrite reverse_cons. apply elem_of_app. right. constructor.
Qed.
Lemma parse_returns cmd : ∃ r, ViCommand.parse cmd = Return r.
Proof.
  unfold ViCommand.parse. case_bool_decide as Ht; [eauto|].
  pose proof (words_from_ne [] (Str.trim cmd) (or_intror (trim_word cmd Ht))) as Hw.
  unfold split_whitespace. destruct (words_from [] (Str.trim cmd)); [done|]. simpl. eauto.
Qed.

Lemma key_to_char_ascii ke ch : key_to_char ke = Some ch → (ch < 128)%N.
Proof.
  unfold key_to_char. destruct (KeyEvent.code ke), (Modifiers.is_shift (KeyEvent.modifiers ke)); intros [= <-]; lia.
Qed.

Section with_io.
Context `{UuidFormat} {I : Type} `{EditorIo I}.
(** The I/O handler hands out ASCII documents. *)
Context (Hascii : ∀ d o (i : I) r i', io_open d o i = (Ok r, i') → ascii (OpenResult.content r)).
Implicit Types e : ViEditor.t I.

Definition vi_ok e : Prop := state_ok (core (state e)).

Lemma lines_from_ok acc s : ascii acc → ascii s → Forall ascii (Str.lines_from acc s).
Proof.
  revert acc. induction s as [|c s IH]; intros acc Ha Hs; simpl.
  - destruct acc; [constructor|]. constructor; [|done]. by apply Forall_reverse.
  - inversion_clear Hs. destruct (c =? 10)%N.
    + constructor; [|apply IH; [constructor|done]]. unfold Str.strip_cr. rewrite reverse_involutive.
      assert (ascii (reverse acc)) as Hr by (by apply Forall_reverse).
      repeat case_match; try done. inversion_clear Ha. by apply Forall_reverse.
    + apply IH; [by constructor|done].
Qed.
Lemma lines_from_ne acc s : acc ≠ [] ∨ s ≠ [] → Str.lines_from acc s ≠ [].
Proof.
  revert acc. induction s as [|c s IH]; intros acc; simpl; [by destruct acc; intros []|].
  intros _. destruct (c =? 10)%N; [done|]. apply IH. by left.
Qed.

Lemma vi_load_ok content s : ascii content → state_ok (core s) → state_ok (core (EditorState.load_content content s)).
Proof.
  intros Ha [_ Hu Hr]. split; [|done|done]. unfold text_ok. simpl. split.
  - destruct content as [|c r]; [repeat constructor|]. apply lines_from_ok; [constructor|done].
  - assert (∃ l ls, match content with [] => [[]] | _ :: _ => Str.lines content end = l :: ls) as (l & ls & E).
    { destruct content as [|c r]; [eauto|]. unfold Str.lines.
      destruct (Str.lines_from [] (c :: r)) eqn:E; [|eauto]. exfalso. revert E. apply lines_from_ne. by right. }
    exists l. unfold core_buf. simpl. rewrite E. split; [done|lia].
Qed.

Lemma open_with_ok d o e : vi_ok e → vi_ok (open_with d o e).2.
Proof.
  intros He. unfold open_with. destruct (io e) as [i|]; [|done].
  destruct (io_open d o i) as [[r|[]] i'] eqn:E; simpl; try (by apply (ok_other (core (state e)))).
  - apply (ok_other (core (EditorState.load_content (OpenResult.content r) (state e)))); [|done..].
    apply vi_load_ok; [by eapply Hascii|done].
  - destruct (OpenOptions.path o); simpl; by apply (ok_other (core (state e))).
Qed.
Lemma save_ok d e : vi_ok e → vi_ok (save_document d e).2.
Proof.
  intros He. unfold save_document. destruct (io e) as [i|], (document e) as [h|]; simpl;
    try (by apply (ok_other (core (state e)))).
  destruct (io_save d h _ i) as [[r|err] i']; simpl; by apply (ok_other (core (state e))).
Qed.
Lemma save_as_ok d p e : vi_ok e → vi_ok (save_document_as d p e).2.
Proof.
  intros He. unfold save_document_as. destruct (io e) as [i|]; [|done].
  destruct (io_save_as d p _ i) as [[r|err] i']; simpl; by apply (ok_other (core (state e))).
Qed.

Lemma execute_ok d cmd e : vi_ok e → ∃ r e', execute_command d cmd e = Return (r, e') ∧ vi_ok e'.
Proof.
  intros He. unfold execute_command. destruct (parse_returns cmd) as [p ->]. simpl.
  pose proof (save_ok d e He) as Hs.
  destruct p as [[| path | path force | | |]|err]; simpl; eauto.
  - destruct (save_document d e). eauto.
  - pose proof (save_as_ok d path e He). destruct (save_document_as d path e). eauto.
  - destruct (_ && _); [eexists _, _; split; [done|]; by apply (ok_other (core (state e)))|].
    pose proof (open_with_ok d (OpenOptions.with_path path OpenOptions.new) e He).
    destruct (open_with _ _ e). eauto.
  - destruct (EditorState.dirty (state e)); [|eauto].
    eexists _, _. split; [done|]. by apply (ok_other (core (state e))).
  - destruct (save_document d e). eauto.
Qed.

Lemma find_ok s : state_ok (core s) → ∃ b s', EditorState.find_next true s = Return (b, s') ∧ state_ok (core s').
Proof.
  intros Hs. destruct (find_next_ok (core s) Hs) as (b & c & E & Hc & _). rewrite <-core_find_next in E.
  destruct (EditorState.find_next true s) as [[b' s']| |]; try done. injection E as <- <-. eauto.
Qed.

Lemma on_state_ok f e : state_ok (core (f (state e))) → ∃ r e', Return (on_state f e) = Return (r, e') ∧ vi_ok e'.
Proof. intros Hf. by eexists _, _. Qed.

Lemma normal_ok ke e : vi_ok e → ∃ r e', handle_normal_mode ke e = Return (r, e') ∧ vi_ok e'.
Proof.
  intros He. pose proof (ok_moves _ He) as (Hl & Hr & Hu & Hd). pose proof (ok_save _ He) as Hs.
  rewrite <-core_move_left in Hl. rewrite <-core_move_right in Hr. rewrite <-core_move_up in Hu.
  rewrite <-core_move_down in Hd. rewrite <-core_save in Hs. unfold handle_normal_mode. cbn zeta.
  destruct (KeyEvent.code ke); try (by apply on_state_ok);
    try (destruct (Modifiers.is_empty _); by apply on_state_ok).
  - (* I *) destruct (Modifiers.is_empty _); apply on_state_ok; [|done].
    by apply (ok_other (core (EditorState.save_undo_snapshot (state e)))).
  - (* N *) destruct (Modifiers.is_empty _); [|by apply on_state_ok].
    destruct (find_ok _ He) as (b & s' & -> & Hs'). simpl. eexists _, _. split; [done|].
    by apply (ok_other (core s')).
  - (* R *) destruct (Modifiers.is_ctrl _); [|by apply on_state_ok]. apply on_state_ok.
    pose proof (ok_redo_step _ He) as Hx. rewrite <-core_redo in Hx.
    destruct (EditorState.redo (state e)) as [[] s']; by apply (ok_other (core s')).
  - (* U *) destruct (Modifiers.is_empty _); [|by apply on_state_ok]. apply on_state_ok.
    pose proof (ok_undo_step _ He) as Hx. rewrite <-core_undo in Hx.
    destruct (EditorState.undo (state e)) as [[] s']; by apply (ok_other (core s')).
  - (* X *) destruct (Modifiers.is_empty _); [|by apply on_state_ok].
    destruct (delete_char_ok _ _ (ok_text _ Hs)) as (ok & b' & E & Hb). simpl in E.
    rewrite <-core_delete_char in E. destruct (TextBuffer.delete_char _ _) as [[k b]| |]; try done.
    injection E as <- <-. simpl. eexists _, _. split; [done|]. destruct Hs as [_ Hu' Hr'].
    destruct k; by split.
  - (* Semicolon *) destruct (Modifiers.is_shift _); apply on_state_ok; [|done].
    by apply (ok_other (core (state e))).
  - (* Slash *) destruct (Modifiers.is_empty _); apply on_state_ok; [|done].
    by apply (ok_other (core (state e))).
Qed.

Lemma insert_ok ke e : vi_ok e → ∃ r e', handle_insert_mode ke e = Return (r, e') ∧ vi_ok e'.
Proof.
  intros He. pose proof (ok_text _ He) as Ht. pose proof He as [_ Hu Hr]. simpl in Ht.
  assert (∃ r e', insert_typed ke e = Return (r, e') ∧ vi_ok e') as Htype.
  { unfold insert_typed. destruct (key_to_char ke) as [ch|] eqn:Ech; [|eauto].
    destruct (insert_char_ok _ _ Ht ch (key_to_char_ascii _ _ Ech)) as (b' & E & Hb).
    rewrite <-core_insert_char in E. destruct (TextBuffer.insert_char _ _ _) as [[k b]| |]; try done.
    injection E as -> <-. simpl. eexists _, _. split; [done|]. split; [|done|done].
    unfold text_ok in *. simpl in *. by rewrite Nat.add_1_r. }
  unfold handle_insert_mode. cbn zeta. destruct (KeyEvent.code ke); try exact Htype; clear Htype.
  - eexists _, _. split; [done|]. by apply (ok_other (core (state e))).
  - destruct (insert_newline_ok _ _ Ht) as (b' & E & Hb). rewrite <-core_insert_newline in E.
    destruct (TextBuffer.insert_newline _ _) as [[k b]| |]; try done. injection E as -> <-. simpl.
    eexists _, _. split; [done|]. split; [|done|done]. unfold text_ok in *. simpl in *. by rewrite Nat.add_1_r.
  - destruct (backspace_ok _ _ Ht) as (p' & b' & E & Hb). rewrite <-core_backspace in E.
    destruct (TextBuffer.backspace _ _) as [[k b]| |]; try done. injection E as <- <-. simpl.
    eexists _, _. split; [done|]. destruct k as [p|]; [|by split].
    simpl in *. by destruct (_ <? _); split.
Qed.

Lemma command_ok d ke e : vi_ok e → ∃ r e', handle_command_mode d ke e = Return (r, e') ∧ vi_ok e'.
Proof.
  intros He. unfold handle_command_mode.
  destruct (KeyEvent.code ke);
    try (apply on_state_ok; destruct (key_to_char ke); by apply (ok_other (core (state e))));
    try (apply on_state_ok; by apply (ok_other (core (state e)))).
  apply execute_ok. by apply (ok_other (core (state e))).
Qed.

Lemma search_ok ke e : vi_ok e → ∃ r e', handle_search_mode ke e = Return (r, e') ∧ vi_ok e'.
Proof.
  intros He. unfold handle_search_mode.
  destruct (KeyEvent.code ke);
    try (apply on_state_ok; destruct (key_to_char ke); by apply (ok_other (core (state e))));
    try (apply on_state_ok; by apply (ok_other (core (state e)))).
  destruct (find_ok _ He) as (b & s' & -> & Hs'). simpl. eexists _, _. split; [done|].
  by apply (ok_other (core s')).
Qed.

Lemma vi_process_ok d ev e : vi_ok e → ∃ r e', process_input d ev e = Return (r, e') ∧ vi_ok e'.
Proof.
  intros He. unfold process_input. destruct (InputEvent.as_key ev) as [ke|]; [|eauto].
  destruct (KeyEvent.is_pressed ke); [|eauto]. destruct (EditorState.mode (state e)).
  - by apply normal_ok.
  - by apply insert_ok.
  - by apply command_ok.
  - by apply search_ok.
Qed.

(** A session: events with the identifiers drawn for each. *)
Fixpoint session (evs : list (Draws.t * InputEvent.t)) e
    : outcome (list (result EditorAction.t EditorError.t) * ViEditor.t I) :=
  match evs with
  | [] => Return ([], e)
  | (d, ev) :: evs =>
      '(r, e) ← process_input d ev e;
      '(rs, e) ← session evs e;
      Return (r :: rs, e)
  end.

Lemma session_ok evs e : vi_ok e → ∃ rs e', session evs e = Return (rs, e') ∧ vi_ok e'.
Proof.
  revert e. induction evs as [|[d ev] evs IH]; intros e He; simpl; [eauto|].
  destruct (vi_process_ok d ev e He) as (r & e1 & -> & H1). simpl.
  destruct (IH e1 H1) as (rs & e2 & -> & H2). simpl. eauto.
Qed.
End with_io.
End ViSafety.

(** ** The properties *)

Module ViProps.
Import Vi EditorAction ViKeys ViEditor ViCore ViSafety EditorSafety StrSpec.

(** An editor component whose documents are ASCII never panics, whatever keys are pressed, and
    its cursor stays inside the text. *)
Theorem vi_session_never_panics `{UuidFormat} {I} `{EditorIo I} (i : I)
    (Hascii : ∀ d o (i : I) r i', io_open d o i = (Ok r, i') → ascii (OpenResult.content r)) evs :
  ∃ rs e, session evs (set_io i new) = Return (rs, e)
    ∧ let p := Cursor.position (EditorState.cursor (state e)) in
      ∃ line, TextBuffer.line (Position.row p) (EditorState.buffer (state e)) = Some line
              ∧ Position.col p ≤ Str.len line.
Proof.
  destruct (session_ok Hascii evs (set_io i new)) as (rs & e & Hs & [[_ (line & Hl & Hc)] _ _]).
  - split; [|constructor..]. split; [by repeat constructor|]. by exists [].
  - exists rs, e. split; [done|]. by exists line.
Qed.

(** The text operations of the component are those of the editor core: on the corresponding
    states they give corresponding results, panics included. *)
Theorem vi_text_operations_are_the_cores s p ch :
  core (EditorState.move_cursor_left s) = EditorCore.move_cursor_left (core s)
  ∧ core (EditorState.move_cursor_right s) = EditorCore.move_cursor_right (core s)
  ∧ core (EditorState.move_cursor_up s) = EditorCore.move_cursor_up (core s)
  ∧ core (EditorState.move_cursor_down s) = EditorCore.move_cursor_down (core s)
  ∧ core (EditorState.save_undo_snapshot s) = EditorCore.save_undo_snapshot (core s)
  ∧ on_snd core (EditorState.undo s) = EditorCore.undo (core s)
  ∧ on_snd core (EditorState.redo s) = EditorCore.redo (core s)
  ∧ map_outcome (on_snd core) (EditorState.find_next true s) = EditorCore.find_next (core s)
  ∧ let b := EditorState.buffer s in
    map_outcome (on_snd core_buf) (TextBuffer.insert_char p ch b)
      = Editor.TextBuffer.insert_char (core_pos p) ch (core_buf b)
    ∧ map_outcome (on_snd core_buf) (TextBuffer.insert_newline p b)
      = Editor.TextBuffer.insert_newline (core_pos p) (core_buf b)
    ∧ map_outcome (on_snd core_buf) (TextBuffer.delete_char p b)
      = Editor.TextBuffer.delete_char (core_pos p) (core_buf b)
    ∧ map_outcome (λ x, (core_pos <$> x.1, core_buf x.2)) (TextBuffer.backspace p b)
      = Editor.TextBuffer.backspace (core_pos p) (core_buf b).
Proof.
  split_and!; auto using core_move_left, core_move_right, core_move_up, core_move_down, core_save, core_undo,
    core_redo, core_find_next, core_insert_char, core_insert_newline, core_delete_char, core_backspace.
Qed.

(** The whole exchange of saving and opening again, with the storage behind. *)
Definition fresh_tx (t : TransactionId.t) (s : JournaledStorage.t) : Prop := JournaledStorage.pending s !! t = None.

Lemma store_spec `{UuidFormat} d o content i :
  fresh_tx (Draws.tx d) (StorageEditorIo.storage i) →
  ∃ s, StorageEditorIo.store d o content i = (Ok (Draws.version d), i <| StorageEditorIo.storage := s |>)
    ∧ JournaledStorage.pending s = JournaledStorage.pending (StorageEditorIo.storage i)
    ∧ ∃ vs, JournaledStorage.objects s !! o
            = Some (vs ++ [VersionEntry.mk (Draws.version d) (Utf8.as_bytes content)]).
Proof.
  intros Hf. unfold StorageEditorIo.store. simpl.
  eexists. split; [|split].
  - unfold JournaledStorage.push_entry at 1. rewrite lookup_insert_eq. reflexivity.
  - simpl. unfold JournaledStorage.push_entry. rewrite delete_insert_eq. by apply delete_id.
  - simpl. unfold JournaledStorage.push_entry. rewrite lookup_total_alt, Hf. simpl.
    unfold JournaledStorage.push_entry. eexists. rewrite lookup_insert_eq. done.
Qed.

Lemma open_object_spec `{UuidFormat} d o vs v bytes content i :
  fresh_tx (Draws.tx d) (StorageEditorIo.storage i) →
  JournaledStorage.objects (StorageEditorIo.storage i) !! o = Some (vs ++ [VersionEntry.mk v bytes]) →
  Utf8.from_utf8 bytes = Some content →
  ∃ i', StorageEditorIo.open d (OpenOptions.with_object o OpenOptions.new) i
    = (Ok (OpenResult.mk content (DocumentHandle.new o v None (bool_decide (is_Some (StorageEditorIo.fs_view i))))), i').
Proof.
  intros Hf Ho Hu. unfold StorageEditorIo.open. simpl.
  unfold JournaledStorage.read, JournaledStorage.read_data, JournaledStorage.own_write. simpl.
  rewrite Hf, Ho, last_snoc. simpl. rewrite Hu. eauto.
Qed.

(** The lines of a saved text as they are loaded: a last line that is empty does not come back,
    unless it is the only one ([str::lines]). *)
Definition reloaded (ls : list Str.t) : list Str.t :=
  if decide (last ls = Some [] ∧ length ls ≠ 1) then take (length ls - 1) ls else ls.

Lemma lines_join_ended k :
  Forall BufferSpec.plain k → k ≠ [] → Str.lines (Str.join (k ++ [[]])) = k.
Proof.
  unfold Str.lines. induction 1 as [|s k [Hs Hcr] Hk IH]; intros Hne; [done|].
  assert (Str.join ((s :: k) ++ [[]]) = s ++ 10%N :: Str.join (k ++ [[]])) as -> by by destruct k.
  rewrite BufferSpec.lines_from_plain by done. cbn [Str.lines_from N.eqb Pos.eqb].
  rewrite app_nil_r, reverse_involutive, BufferSpec.strip_cr_plain by done. f_equal.
  destruct k; [done|by apply IH].
Qed.
Lemma from_string_as_string (b : TextBuffer.t) :
  Forall BufferSpec.plain (TextBuffer.lines b) → TextBuffer.lines b ≠ [] →
  TextBuffer.lines (TextBuffer.from_string (TextBuffer.as_string b)) = reloaded (TextBuffer.lines b).
Proof.
  destruct b as [ls]. unfold TextBuffer.from_string, TextBuffer.as_string, reloaded. cbn [TextBuffer.lines].
  intros Hp Hne. assert (∀ r, r ≠ [] → Str.lines (Str.join ls) = r →
    match Str.join ls with [] => [[]] | _ => Str.lines (Str.join ls) end = r) as Hcase.
  { intros r Hr E. destruct (Str.join ls); [|done]. by subst r. }
  case_decide as Hd.
  - destruct Hd as [Hl H1]. apply last_Some in Hl as [k ->]. rewrite length_app in *. simpl in *.
    rewrite Nat.add_sub, take_app_length. apply Forall_app in Hp as [Hp _].
    assert (k ≠ []) by (by intros ->). apply Hcase; [done|]. by apply lines_join_ended.
  - destruct (decide (last ls = Some [])) as [Hl|Hl]; [|by apply Hcase, BufferSpec.lines_join].
    destruct ls as [|x [|y ls]]; [done| |by destruct Hd; split]. by injection Hl as ->.
Qed.

(** C30: a document that the editor has saved opens again.  Saving a document that has a handle
    always succeeds; and an editor that later opens the object by its identifier, in a new
    transaction and with whatever done to other objects in between, reads exactly the saved text
    from the storage and has the version that saving reported as its document.  The buffer it
    then holds has the saved lines, except that an empty last line which is not the only one is
    lost.  (The lines are text without line feeds inside and without a carriage return at their
    ends.) *)
Theorem vi_saved_document_opens_again `{UuidFormat} d (e : ViEditor.t StorageEditorIo.t) i h :
  io e = Some i → document e = Some h → Forall Utf8.scalar (get_content e) →
  let ls := TextBuffer.lines (EditorState.buffer (state e)) in
  ls ≠ [] → Forall BufferSpec.plain ls → fresh_tx (Draws.tx d) (StorageEditorIo.storage i) →
  let o := DocumentHandle.object_id h in
  let latest (i : StorageEditorIo.t) := JournaledStorage.objects (StorageEditorIo.storage i) !! o in
  ∃ v e' i', save_document d e = (Ok v, e') ∧ io e' = Some i'
    ∧ EditorState.dirty (state e') = false ∧ get_content e' = get_content e
    ∧ ∀ d2 e2 i2, io e2 = Some i2 → latest i2 = latest i' →
        fresh_tx (Draws.tx d2) (StorageEditorIo.storage i2) →
        ∃ e3 i3 handle,
          StorageEditorIo.open d2 (OpenOptions.with_object o OpenOptions.new) i2
            = (Ok (OpenResult.mk (get_content e) handle), i3)
          ∧ open_with d2 (OpenOptions.with_object o OpenOptions.new) e2 = (Ok tt, e3)
          ∧ TextBuffer.lines (EditorState.buffer (state e3)) = reloaded ls
          ∧ EditorState.cursor (state e3) = Cursor.new ∧ EditorState.dirty (state e3) = false
          ∧ document e3 = Some handle ∧ DocumentHandle.object_id handle = o
          ∧ DocumentHandle.version_id handle = v.
Proof.
  intros Hi Hh Hs ls Hne Hplain Hf o latest. unfold save_document. rewrite Hi, Hh. cbv zeta.
  change (io_save d h (TextBuffer.as_string (EditorState.buffer (state e))) i)
    with (StorageEditorIo.save d h (get_content e) i). unfold StorageEditorIo.save.
  destruct (store_spec d o (get_content e) i Hf) as (s & E & _ & vs & Ho). fold o. rewrite E.
  eexists _, _, _. split_and!; try done. intros d2 e2 i2 Hi2 Hlatest Hf2.
  unfold latest in Hlatest. simpl in Hlatest. rewrite Ho in Hlatest.
  destruct (open_object_spec d2 o vs (Draws.version d) (Utf8.as_bytes (get_content e)) (get_content e) i2)
    as [i3 Hopen]; [done|done|by apply Utf8.from_utf8_as_bytes|].
  unfold open_with. rewrite Hi2.
  change (io_open d2 (OpenOptions.with_object o OpenOptions.new) i2)
    with (StorageEditorIo.open d2 (OpenOptions.with_object o OpenOptions.new) i2). rewrite Hopen.
  eexists _, _, _. split_and!; try done. by apply from_string_as_string.
Qed.

(** The editor quits only when nothing is unsaved, or when the typed command forces it. *)
Theorem vi_quit_loses_nothing `{UuidFormat} {I} `{EditorIo I} d ev (e e' : ViEditor.t I) :
  process_input d ev e = Return (Ok Quit, e') →
  EditorState.dirty (state e') = false
  ∨ ViCommand.parse (EditorState.command_buffer (state e)) = Return (Ok ViCommand.ForceQuit).
Proof.
  unfold process_input. destruct (InputEvent.as_key ev) as [ke|]; [|done].
  destruct (KeyEvent.is_pressed ke); [|done]. destruct (EditorState.mode (state e)).
  - unfold handle_normal_mode. cbn zeta. destruct (KeyEvent.code ke); try done.
    + destruct (Modifiers.is_empty _); [|done]. by destruct (EditorState.find_next _ _) as [[]| |].
    + destruct (Modifiers.is_empty _); [|done]. by destruct (TextBuffer.delete_char _ _) as [[]| |].
  - unfold handle_insert_mode, insert_typed. cbn zeta.
    destruct (KeyEvent.code ke); try (destruct (key_to_char ke); [|done]); try done;
      try (by destruct (TextBuffer.insert_char _ _ _) as [[]| |]).
    + by destruct (TextBuffer.insert_newline _ _) as [[]| |].
    + by destruct (TextBuffer.backspace _ _) as [[]| |].
  - unfold handle_command_mode. destruct (KeyEvent.code ke); try done. unfold execute_command.
    destruct (ViCommand.parse _) as [p| |]; try done. simpl.
    destruct p as [[| path | path force | | |]|err]; simpl; try done.
    + by destruct (save_document _ _) as [[] ?].
    + by destruct (save_document_as _ _ _) as [[] ?].
    + destruct (_ && _); [done|]. by destruct (open_with _ _ _) as [[] ?].
    + destruct (EditorState.dirty (state e)) eqn:Ed; [done|]. intros [= <-]. by left.
    + by right.
    + unfold save_document. simpl. destruct (io e) as [i|], (document e) as [h|]; simpl; try done.
      * destruct (io_save d h _ i) as [[r|] i']; simpl; [|done]. intros [= <-]. by left.
      * intros [= <-]. by left.
  - unfold handle_search_mode. destruct (KeyEvent.code ke); try done.
    by destruct (EditorState.find_next _ _) as [[]| |].
Qed.

Definition press (c : KeyCode.t) : InputEvent.t := InputEvent.Key (KeyEvent.pressed c Modifiers.none).
Definition escapes (ev : InputEvent.t) : bool :=
  match ev with InputEvent.Key ke => bool_decide (KeyEvent.code ke = KeyCode.Escape) end.

Lemma insert_keeps_undo `{UuidFormat} {I} `{EditorIo I} ke (e : ViEditor.t I) r e' :
  KeyEvent.code ke ≠ KeyCode.Escape → handle_insert_mode ke e = Return (r, e') →
  EditorState.undo_stack (state e') = EditorState.undo_stack (state e)
  ∧ EditorState.mode (state e') = EditorState.mode (state e).
Proof.
  intros Hne. unfold handle_insert_mode. cbn zeta.
  assert (insert_typed ke e = Return (r, e') →
    EditorState.undo_stack (state e') = EditorState.undo_stack (state e)
    ∧ EditorState.mode (state e') = EditorState.mode (state e)) as Htype.
  { unfold insert_typed. destruct (key_to_char ke); [|by intros [= _ <-]].
    destruct (TextBuffer.insert_char _ _ _) as [[[] b]| |]; simpl; try done; by intros [= _ <-]. }
  destruct (KeyEvent.code ke); try exact Htype; try done.
  - destruct (TextBuffer.insert_newline _ _) as [[[] b]| |]; simpl; try done; by intros [= _ <-].
  - destruct (TextBuffer.backspace _ _) as [[[p|] b]| |]; simpl; try done; intros [= _ <-]; simpl; [|done].
    by destruct (_ <? _).
Qed.

Lemma insert_session `{UuidFormat} {I} `{EditorIo I} evs (e : ViEditor.t I) :
  vi_ok e → EditorState.mode (state e) = EditorMode.Insert → Forall (λ x, escapes x.2 = false) evs →
  ∃ rs e', session evs e = Return (rs, e') ∧ vi_ok e' ∧ EditorState.mode (state e') = EditorMode.Insert
    ∧ EditorState.undo_stack (state e') = EditorState.undo_stack (state e).
Proof.
  intros He Hm Hevs. revert e He Hm. induction Hevs as [|[d [ke]] evs Hev Hevs IH]; intros e He Hm.
  { by exists [], e. }
  simpl in Hev. apply bool_decide_eq_false in Hev. simpl session. unfold process_input. simpl.
  destruct (KeyEvent.is_pressed ke).
  - rewrite Hm. destruct (insert_ok ke e He) as (r & e1 & E & H1). rewrite E. simpl.
    destruct (insert_keeps_undo ke e r e1 Hev E) as [Hu Hm1].
    destruct (IH e1 H1) as (rs & e2 & -> & H2 & Hm2 & Hu2); [congruence|]. simpl.
    eexists _, _. split; [done|]. split_and!; [done|done|congruence].
  - simpl. destruct (IH e He Hm) as (rs & e2 & -> & ?). simpl. eexists _, _. split; [done|]. done.
Qed.

Lemma session_app `{UuidFormat} {I} `{EditorIo I} evs1 evs2 (e : ViEditor.t I) :
  session (evs1 ++ evs2) e =
  ('(rs1, e1) ← session evs1 e; '(rs2, e2) ← session evs2 e1; Return (rs1 ++ rs2, e2)).
Proof.
  revert e. induction evs1 as [|[d ev] evs1 IH]; intros e; simpl.
  - by destruct (session evs2 e) as [[]| |].
  - destruct (process_input d ev e) as [[r e1]| |]; try done. simpl. rewrite IH.
    destruct (session evs1 e1) as [[rs1 e2]| |]; try done. simpl. by destruct (session evs2 e2) as [[]| |].
Qed.

(** C36: pressing [i], typing whatever (Enter and Backspace included), leaving with Escape and then
    pressing [u] gives back the text and the cursor as they were before. *)
Theorem vi_undo_takes_insertion_back `{UuidFormat} {I} `{EditorIo I} evs d1 d2 d3 (e : ViEditor.t I) :
  vi_ok e → EditorState.mode (state e) = EditorMode.Normal → Forall (λ x, escapes x.2 = false) evs →
  ∃ rs e', session ((d1, press KeyCode.I) :: evs ++ [(d2, press KeyCode.Escape); (d3, press KeyCode.U)]) e
           = Return (rs, e')
    ∧ EditorState.buffer (state e') = EditorState.buffer (state e)
    ∧ EditorState.cursor (state e') = EditorState.cursor (state e).
Proof.
  intros He Hm Hevs. simpl session. unfold process_input at 1. simpl. rewrite Hm. simpl.
  set (e1 := e <| state ::= _ |>).
  assert (∃ u, EditorState.undo_stack (state e1)
    = u ++ [EditorSnapshot.mk (EditorState.buffer (state e)) (EditorState.cursor (state e))]) as [u Hu].
  { unfold e1, EditorState.say, EditorState.save_undo_snapshot. simpl.
    destruct (100 <? _) eqn:E; simpl; [|eauto]. destruct (EditorState.undo_stack (state e)) as [|x l]; [done|].
    simpl. eauto. }
  assert (vi_ok e1) as H1.
  { apply (ok_other (core (EditorState.save_undo_snapshot (state e)))); [|done..].
    rewrite core_save. by apply ok_save. }
  destruct (insert_session evs e1 H1) as (rs & e2 & E2 & H2 & Hm2 & Hu2); [done|done|].
  rewrite session_app, E2. simpl.
  assert (process_input d2 (press KeyCode.Escape) e2
    = Return (on_state (EditorState.set_mode EditorMode.Normal) e2)) as ->
    by (unfold process_input; simpl; by rewrite Hm2).
  set (e3 := e2 <| state ::= EditorState.set_mode EditorMode.Normal |>).
  assert (∃ s', EditorState.undo (state e3) = (true, s')
    ∧ EditorState.buffer s' = EditorState.buffer (state e)
    ∧ EditorState.cursor s' = EditorState.cursor (state e)) as (s' & Hundo & Hb & Hc).
  { unfold EditorState.undo. change (EditorState.undo_stack (state e3)) with (EditorState.undo_stack (state e2)).
    rewrite Hu2, Hu, (proj2 (pop_Some (u ++ [_]) _ u)) by done. by eexists. }
  assert (process_input d3 (press KeyCode.U) e3 = Return (Ok Continue,
    e3 <| state := EditorState.mark_all_dirty 100 (EditorState.say "Undo" s') |>)) as E3.
  { transitivity (Return (Ok Continue : result EditorAction.t EditorError.t,
      e3 <| state := match EditorState.undo (state e3) with
                     | (true, s) => EditorState.mark_all_dirty 100 (EditorState.say "Undo" s)
                     | (false, s) => EditorState.say "Already at oldest change" s
                     end |>)); [reflexivity|by rewrite Hundo]. }
  change (on_state (EditorState.set_mode EditorMode.Normal) e2)
    with (Ok Continue : result EditorAction.t EditorError.t, e3).
  cbn [mbind outcome_bind]. rewrite E3. simpl. eexists _, _. split; [done|]. by split.
Qed.

(** After [:e] of a path that does not exist the editor shows the new name, but it still holds
    the text and the document it had: the next [:w] writes that text into the old document. *)
Theorem edit_missing_writes_old_document `{UuidFormat} {I} `{EditorIo I} d d' path (e : ViEditor.t I) i i' h :
  io e = Some i → document e = Some h →
  io_open d (OpenOptions.with_path path OpenOptions.new) i = (Err IoError.NotFound, i') →
  let e1 := (open_with d (OpenOptions.with_path path OpenOptions.new) e).2 in
  EditorState.document_label (state e1) = Some path ∧ get_content e1 = get_content e
  ∧ io (save_document d' e1).2 = Some (io_save d' h (get_content e) i').2.
Proof.
  intros Hi Hd Ho. unfold open_with. rewrite Hi, Ho. simpl. split; [done|]. split; [done|].
  unfold save_document. simpl. rewrite Hd. unfold get_content.
  by destruct (io_save d' h _ i') as [[r|err] i''].
Qed.

(** *** A concrete editor *)

#[local] Open Scope N_scope.
Definition oid (n : N) : ObjectId.t := ObjectId.from_uuid n.
Definition draws (n : N) : Draws.t :=
  Draws.mk (TransactionId.mk n) (oid (100 + n)) (VersionId.from_uuid n) (oid (200 + n)).
#[local] Instance format : UuidFormat := sample_format.
(** The file system of [FsView] with an empty storage. *)
Definition sample_io : StorageEditorIo.t :=
  StorageEditorIo.with_fs_view JournaledStorage.new FsProps.sample_fs.2 FsProps.sample_root.
Definition sample_handle : DocumentHandle.t := DocumentHandle.new (oid 7) (VersionId.from_uuid 1) None true.
Definition sample_editor : ViEditor.t StorageEditorIo.t :=
  load_document (str "hello") sample_handle (set_io sample_io new).

(** An I/O handler without documents. *)
#[local] Instance no_io : EditorIo unit := {|
  io_open _ _ i := (Err IoError.NotFound, i);
  io_save _ _ _ i := (Err IoError.NotFound, i);
  io_save_as _ _ _ i := (Err IoError.NotFound, i)
|}.

Lemma vi_session_never_panics_witness :
  ∃ rs e, session [(draws 1, press KeyCode.I); (draws 2, press KeyCode.A)] (set_io tt new) = Return (rs, e)
    ∧ let p := Cursor.position (EditorState.cursor (state e)) in
      ∃ line, TextBuffer.line (Position.row p) (EditorState.buffer (state e)) = Some line
              ∧ (Position.col p ≤ Str.len line)%nat.
Proof. apply (vi_session_never_panics tt). intros d o i r i' E. discriminate E. Defined.

(** A text with an empty last line, saved and opened again. *)
Definition ended_editor : ViEditor.t StorageEditorIo.t :=
  sample_editor <| state ::= λ s, s <| EditorState.buffer := TextBuffer.mk [str "hello"; []; str "you"; []] |> |>.
Lemma vi_saved_document_opens_again_witness :
  ∃ v e' i', save_document (draws 1) ended_editor = (Ok v, e') ∧ io e' = Some i' ∧
    ∃ e3, open_with (draws 2) (OpenOptions.with_object (oid 7) OpenOptions.new) e' = (Ok tt, e3)
      ∧ TextBuffer.lines (EditorState.buffer (state e3)) = [str "hello"; []; str "you"].
Proof.
  destruct (vi_saved_document_opens_again (draws 1) ended_editor sample_io sample_handle)
    as (v & e' & i' & Hs & Hi & _ & _ & Hopen).
  - reflexivity.
  - reflexivity.
  - repeat constructor; vm_compute; reflexivity.
  - discriminate.
  - repeat constructor; try discriminate; by apply (bool_decide_eq_true_1 (_ ∉ _)).
  - reflexivity.
  - exists v, e', i'. split_and!; [done|done|].
    destruct (Hopen (draws 2) e' i' Hi eq_refl) as (e3 & i3 & handle & _ & Ho & Hl & _).
    { assert (io (save_document (draws 1) ended_editor).2 = Some i') as Hi' by (rewrite Hs; exact Hi).
      vm_compute in Hi'. injection Hi' as <-. reflexivity. }
    exists e3. split; [exact Ho|]. rewrite Hl. reflexivity.
Defined.

Definition quitting : ViEditor.t unit :=
  (set_io tt new) <| state ::= λ s, (EditorState.set_mode EditorMode.Command s)
                                    <| EditorState.command_buffer := str "q" |> |>.

Lemma vi_quit_loses_nothing_witness :
  ∃ e', process_input (draws 1) (press KeyCode.Enter) quitting = Return (Ok Quit, e')
    ∧ (EditorState.dirty (state e') = false
       ∨ ViCommand.parse (EditorState.command_buffer (state quitting)) = Return (Ok ViCommand.ForceQuit)).
Proof.
  assert (∃ e', process_input (draws 1) (press KeyCode.Enter) quitting = Return (Ok Quit, e')) as [e' E].
  { exists (quitting <| state ::= EditorState.clear_command |> <| state ::= EditorState.set_mode EditorMode.Normal |>).
    vm_compute. reflexivity. }
  exists e'. split; [exact E|]. exact (vi_quit_loses_nothing (draws 1) (press KeyCode.Enter) quitting e' E).
Defined.

Lemma sample_ok : vi_ok sample_editor.
Proof. apply (ok_other (core (EditorState.load_content (str "hello") EditorState.new))); [|done..].
  apply vi_load_ok; [repeat constructor|]. split; [|constructor..]. split; [by repeat constructor|]. by exists [].
Qed.

Lemma vi_undo_takes_insertion_back_witness :
  ∃ rs e', session ((draws 1, press KeyCode.I) :: [(draws 2, press KeyCode.A); (draws 3, press KeyCode.Enter)]
             ++ [(draws 4, press KeyCode.Escape); (draws 5, press KeyCode.U)]) sample_editor = Return (rs, e')
    ∧ EditorState.buffer (state e') = EditorState.buffer (state sample_editor)
    ∧ EditorState.cursor (state e') = EditorState.cursor (state sample_editor).
Proof.
  apply (vi_undo_takes_insertion_back [(draws 2, press KeyCode.A); (draws 3, press KeyCode.Enter)]
    (draws 1) (draws 4) (draws 5) sample_editor sample_ok).
  - reflexivity.
  - repeat constructor.
Defined.

Lemma edit_missing_writes_old_document_witness :
  let e1 := (open_with (draws 1) (OpenOptions.with_path (str "new.txt") OpenOptions.new) sample_editor).2 in
  EditorState.document_label (state e1) = Some (str "new.txt") ∧ get_content e1 = get_content sample_editor
  ∧ io (save_document (draws 2) e1).2
    = Some (io_save (draws 2) sample_handle (get_content sample_editor) sample_io).2.
Proof.
  apply (edit_missing_writes_old_document (draws 1) (draws 2) (str "new.txt") sample_editor sample_io sample_io
    sample_handle); reflexivity.
Defined.

(** Saving under a path with directories links the last name in the root: the document is not
    where it was asked for. *)
Lemma save_as_ignores_directories :
  let i := (StorageEditorIo.save_as (draws 1) (str "docs/todo") (str "x") sample_io).2 in
  is_ok (StorageEditorIo.save_as (draws 1) (str "docs/todo") (str "x") sample_io).1 = true
  ∧ StorageEditorIo.locate (OpenOptions.with_path (str "docs/todo") OpenOptions.new) i = Err IoError.NotFound
  ∧ StorageEditorIo.locate (OpenOptions.with_path (str "todo") OpenOptions.new) i = Ok (oid 101).
Proof. vm_compute. done. Qed.

(** The hint of normal mode and the suggestions name a command that the parser does not know. *)
Lemma help_is_suggested_but_unknown :
  str "help" ∈ EditorView.get_command_suggestions []
  ∧ ViCommand.parse (str "help") = Return (Err (ViCommandError.UnknownCommand (str "help"))).
Proof. split; [|reflexivity]. vm_compute. right. left. Qed.

(** A document with a character of two bytes makes the editor panic: right, insert mode, a letter. *)
Lemma vi_multibyte_panics :
  session [(draws 1, press KeyCode.Right); (draws 2, press KeyCode.I); (draws 3, press KeyCode.A)]
    (load_document [233%N] sample_handle (set_io tt new)) = Panic.
Proof. vm_compute. reflexivity. Qed.
End ViProps.
