(* ===== verification/Paging.v ===== *)
(** * Page tables of the x86-64 layer

    [hal_x86_64/src/paging.rs]: addresses and the indices they split into, the bits of a page
    table entry, permissions as flags, and the manager that hands out page tables.  Words are
    64-bit values as [N]; [!mask] is the complement in 64 bits. *)

From S2P Require Import Prelude Debug Text.
Open Scope string_scope.
Open Scope list_scope.
Open Scope N_scope.

(* hal_x86_64/src/paging.rs:30-31 PAGE_SIZE *)
Definition PAGE_SIZE : N := 4096.
(* hal_x86_64/src/paging.rs:33-34 PAGE_TABLE_LEVELS *)
Definition PAGE_TABLE_LEVELS : N := 4.
(* hal_x86_64/src/paging.rs:36-37 ENTRIES_PER_TABLE *)
Definition ENTRIES_PER_TABLE : N := 512.
(* hal_x86_64/src/paging.rs:39-40 KERNEL_SPACE_START *)
Definition KERNEL_SPACE_START : N := 0xFFFF800000000000.
(* hal_x86_64/src/paging.rs:42-43 USER_SPACE_END *)
Definition USER_SPACE_END : N := 0x00007FFFFFFFFFFF.

(** [!x] of a [u64]. *)
Definition not64 (x : N) : N := N.lxor x u64_max.

Module PhysAddr.
(* hal_x86_64/src/paging.rs:45-59 PhysAddr *)
Record t := new { as_u64 : N }.
#[global] Instance eq_dec : EqDecision t.
Proof. solve_decision. Defined.
(* hal_x86_64/src/paging.rs:61-64 PhysAddr::is_aligned *)
Definition is_aligned (a : t) : bool := as_u64 a mod PAGE_SIZE =? 0.
(* hal_x86_64/src/paging.rs:67-71 PhysAddr::fmt *)
Definition display (a : t) : string := "PhysAddr(0x" +:+ Utf8.hex (as_u64 a) +:+ ")".
End PhysAddr.

Module VirtAddr.
(* hal_x86_64/src/paging.rs:73-87 VirtAddr *)
Record t := new { as_u64 : N }.
#[global] Instance eq_dec : EqDecision t.
Proof. solve_decision. Defined.
(* hal_x86_64/src/paging.rs:89-92 VirtAddr::is_aligned *)
Definition is_aligned (a : t) : bool := as_u64 a mod PAGE_SIZE =? 0.
(* hal_x86_64/src/paging.rs:94-97 VirtAddr::is_kernel *)
Definition is_kernel (a : t) : bool := KERNEL_SPACE_START <=? as_u64 a.
(* hal_x86_64/src/paging.rs:99-102 VirtAddr::is_user *)
Definition is_user (a : t) : bool := as_u64 a <=? USER_SPACE_END.
(* hal_x86_64/src/paging.rs:104-107 VirtAddr::pml4_index *)
Definition pml4_index (a : t) : N := N.land (N.shiftr (as_u64 a) 39) 0x1FF.
(* hal_x86_64/src/paging.rs:109-112 VirtAddr::pdpt_index *)
Definition pdpt_index (a : t) : N := N.land (N.shiftr (as_u64 a) 30) 0x1FF.
(* hal_x86_64/src/paging.rs:114-117 VirtAddr::pd_index *)
Definition pd_index (a : t) : N := N.land (N.shiftr (as_u64 a) 21) 0x1FF.
(* hal_x86_64/src/paging.rs:119-122 VirtAddr::pt_index *)
Definition pt_index (a : t) : N := N.land (N.shiftr (as_u64 a) 12) 0x1FF.
(* hal_x86_64/src/paging.rs:124-127 VirtAddr::page_offset *)
Definition page_offset (a : t) : N := N.land (as_u64 a) 0xFFF.
(* hal_x86_64/src/paging.rs:130-134 VirtAddr::fmt *)
Definition display (a : t) : string := "VirtAddr(0x" +:+ Utf8.hex (as_u64 a) +:+ ")".
End VirtAddr.

Module PageTableFlags.
(* hal_x86_64/src/paging.rs:136-175 PageTableFlags *)
Record t := from_bits { bits : N }.
#[global] Instance eq_dec : EqDecision t.
Proof. solve_decision. Defined.
(* hal_x86_64/src/paging.rs:141-142 PageTableFlags::PRESENT *)
Definition PRESENT : N := N.shiftl 1 0.
(* hal_x86_64/src/paging.rs:143-144 PageTableFlags::WRITABLE *)
Definition WRITABLE : N := N.shiftl 1 1.
(* hal_x86_64/src/paging.rs:145-146 PageTableFlags::USER *)
Definition USER : N := N.shiftl 1 2.
(* hal_x86_64/src/paging.rs:147-148 PageTableFlags::WRITE_THROUGH *)
Definition WRITE_THROUGH : N := N.shiftl 1 3.
(* hal_x86_64/src/paging.rs:149-150 PageTableFlags::CACHE_DISABLE *)
Definition CACHE_DISABLE : N := N.shiftl 1 4.
(* hal_x86_64/src/paging.rs:151-152 PageTableFlags::ACCESSED *)
Definition ACCESSED : N := N.shiftl 1 5.
(* hal_x86_64/src/paging.rs:153-154 PageTableFlags::DIRTY *)
Definition DIRTY : N := N.shiftl 1 6.
(* hal_x86_64/src/paging.rs:155-156 PageTableFlags::HUGE *)
Definition HUGE : N := N.shiftl 1 7.
(* hal_x86_64/src/paging.rs:157-158 PageTableFlags::GLOBAL *)
Definition GLOBAL : N := N.shiftl 1 8.
(* hal_x86_64/src/paging.rs:159-160 PageTableFlags::NO_EXECUTE *)
Definition NO_EXECUTE : N := N.shiftl 1 63.
(* hal_x86_64/src/paging.rs:162-165 PageTableFlags::empty *)
Definition empty : t := from_bits 0.
(* hal_x86_64/src/paging.rs:177-180 PageTableFlags::contains *)
Definition contains (f : t) (flag : N) : bool := N.land (bits f) flag =? flag.
(* hal_x86_64/src/paging.rs:182-185 PageTableFlags::with_flag *)
Definition with_flag (flag : N) (f : t) : t := from_bits (N.lor (bits f) flag).
(* hal_x86_64/src/paging.rs:187-190 PageTableFlags::without_flag *)
Definition without_flag (flag : N) (f : t) : t := from_bits (N.land (bits f) (not64 flag)).
End PageTableFlags.

Module PageTableEntry.
(* hal_x86_64/src/paging.rs:193-196 PageTableEntry *)
Record t := mk { raw : N }.
#[global] Instance eq_dec : EqDecision t.
Proof. solve_decision. Defined.
(* hal_x86_64/src/paging.rs:199-200 PageTableEntry::ADDR_MASK *)
Definition ADDR_MASK : N := 0x000FFFFFFFFFF000.
(* hal_x86_64/src/paging.rs:202-205 PageTableEntry::unused *)
Definition unused : t := mk 0.
(* hal_x86_64/src/paging.rs:207-210 PageTableEntry::is_unused *)
Definition is_unused (e : t) : bool := raw e =? 0.
(* hal_x86_64/src/paging.rs:212-215 PageTableEntry::flags *)
Definition flags (e : t) : PageTableFlags.t := PageTableFlags.from_bits (N.land (raw e) (not64 ADDR_MASK)).
(* hal_x86_64/src/paging.rs:217-224 PageTableEntry::phys_addr *)
Definition phys_addr (e : t) : option PhysAddr.t :=
  if PageTableFlags.contains (flags e) PageTableFlags.PRESENT
  then Some (PhysAddr.new (N.land (raw e) ADDR_MASK)) else None.
(* hal_x86_64/src/paging.rs:226-229 PageTableEntry::set *)
Definition set (addr : PhysAddr.t) (f : PageTableFlags.t) (_ : t) : t :=
  mk (N.lor (PhysAddr.as_u64 addr) (PageTableFlags.bits f)).
(* hal_x86_64/src/paging.rs:231-234 PageTableEntry::clear *)
Definition clear (_ : t) : t := mk 0.
End PageTableEntry.

Module PageTable.
(* hal_x86_64/src/paging.rs:237-241 PageTable *)
Record t := mk { entries : list PageTableEntry.t }.
#[global] Instance rebuild_t : Rebuild t := λ p, mk (entries p).
(* hal_x86_64/src/paging.rs:244-249 PageTable::new *)
Definition new : t := mk (replicate (N.to_nat ENTRIES_PER_TABLE) PageTableEntry.unused).
(* hal_x86_64/src/paging.rs:251-254 PageTable::entry *)
Definition entry (index : N) (p : t) : outcome PageTableEntry.t := slice_get (entries p) index.
(** The table after a change through the reference. *)
(* hal_x86_64/src/paging.rs:256-259 PageTable::entry_mut *)
Definition entry_mut (index : N) (f : PageTableEntry.t → PageTableEntry.t) (p : t) : outcome t :=
  e ← slice_get (entries p) index;
  es ← slice_set (entries p) index (f e);
  Return (p <| entries := es |>).
(* hal_x86_64/src/paging.rs:261-266 PageTable::clear *)
Definition clear (p : t) : t := p <| entries ::= fmap PageTableEntry.clear |>.
End PageTable.

Module AddressSpaceHandle.
(* hal_x86_64/src/paging.rs:275-286 AddressSpaceHandle *)
Record t := new { pml4_phys : PhysAddr.t }.
#[global] Instance eq_dec : EqDecision t.
Proof. solve_decision. Defined.
(* hal_x86_64/src/paging.rs:288-291 AddressSpaceHandle::as_cr3 *)
Definition as_cr3 (h : t) : N := PhysAddr.as_u64 (pml4_phys h).
End AddressSpaceHandle.

Module Permissions.
(* hal_x86_64/src/paging.rs:400-407 Permissions *)
Record t := mk { read : bool; write : bool; execute : bool; user : bool }.
#[global] Instance eq_dec : EqDecision t.
Proof. solve_decision. Defined.
(* hal_x86_64/src/paging.rs:410-418 Permissions::kernel_ro *)
Definition kernel_ro : t := mk true false false false.
(* hal_x86_64/src/paging.rs:420-428 Permissions::kernel_rw *)
Definition kernel_rw : t := mk true true false false.
(* hal_x86_64/src/paging.rs:430-438 Permissions::kernel_rx *)
Definition kernel_rx : t := mk true false true false.
(* hal_x86_64/src/paging.rs:440-448 Permissions::user_ro *)
Definition user_ro : t := mk true false false true.
(* hal_x86_64/src/paging.rs:450-458 Permissions::user_rw *)
Definition user_rw : t := mk true true false true.
(* hal_x86_64/src/paging.rs:460-468 Permissions::user_rx *)
Definition user_rx : t := mk true false true true.
(* hal_x86_64/src/paging.rs:470-485 Permissions::to_flags *)
Definition to_flags (p : t) : PageTableFlags.t :=
  let flags := PageTableFlags.from_bits PageTableFlags.PRESENT in
  let flags := if write p then PageTableFlags.with_flag PageTableFlags.WRITABLE flags else flags in
  let flags := if user p then PageTableFlags.with_flag PageTableFlags.USER flags else flags in
  if negb (execute p) then PageTableFlags.with_flag PageTableFlags.NO_EXECUTE flags else flags.
End Permissions.

Module PageTableManager.
(* hal_x86_64/src/paging.rs:294-304 PageTableManager *)
Record t := mk { next_phys_addr : N; tables : gmap N PageTable.t }.
#[global] Instance rebuild_t : Rebuild t := λ m, mk (next_phys_addr m) (tables m).
(* hal_x86_64/src/paging.rs:307-319 PageTableManager::new *)
Definition new : t := mk 0x100000 ∅.
(* hal_x86_64/src/paging.rs:321-326 PageTableManager::alloc_page *)
Definition alloc_page (m : t) : outcome (PhysAddr.t * t) :=
  let addr := next_phys_addr m in
  next ← add_u64 (next_phys_addr m) PAGE_SIZE;
  Return (PhysAddr.new addr, m <| next_phys_addr := next |>).
(* hal_x86_64/src/paging.rs:328-333 PageTableManager::create_address_space *)
Definition create_address_space (m : t) : outcome (AddressSpaceHandle.t * t) :=
  '(pml4_phys, m) ← alloc_page m;
  Return (AddressSpaceHandle.new pml4_phys,
          m <| tables ::= <[PhysAddr.as_u64 pml4_phys := PageTable.new]> |>).
(* hal_x86_64/src/paging.rs:335-365 PageTableManager::map_page *)
Definition map_page (handle : AddressSpaceHandle.t) (virt : VirtAddr.t) (phys : PhysAddr.t)
    (perms : Permissions.t) (m : t) : result unit string * t :=
  if negb (VirtAddr.is_aligned virt) || negb (PhysAddr.is_aligned phys)
  then (Err "Addresses must be page-aligned", m)
  else
    match tables m !! PhysAddr.as_u64 (AddressSpaceHandle.pml4_phys handle) with
    | None => (Err "Invalid address space handle", m)
    | Some _ => (Ok tt, m)
    end.
(* hal_x86_64/src/paging.rs:367-386 PageTableManager::unmap_page *)
Definition unmap_page (handle : AddressSpaceHandle.t) (virt : VirtAddr.t) (m : t) : result unit string * t :=
  if negb (VirtAddr.is_aligned virt) then (Err "Address must be page-aligned", m)
  else
    match tables m !! PhysAddr.as_u64 (AddressSpaceHandle.pml4_phys handle) with
    | None => (Err "Invalid address space handle", m)
    | Some _ => (Ok tt, m)
    end.
(* hal_x86_64/src/paging.rs:388-391 PageTableManager::table_count *)
Definition table_count (m : t) : N := N.of_nat (size (tables m)).
End PageTableManager.

(** ** Properties *)

Module PagingSpec.
(** The bits of an entry's address field. *)
Lemma mask_bits n : N.testbit PageTableEntry.ADDR_MASK n = (12 <=? n) && (n <=? 51).
Proof.
  destruct (N.le_gt_cases n 64) as [Hle|Hgt].
  - assert (Forall (λ n, N.testbit PageTableEntry.ADDR_MASK n = (12 <=? n) && (n <=? 51))
      (N.of_nat <$> seq 0 65)) as Hall by (vm_compute; repeat constructor).
    rewrite Forall_forall in Hall. apply Hall, list_elem_of_fmap. exists (N.to_nat n).
    rewrite N2Nat.id, elem_of_seq. split; [done|]. lia.
  - rewrite N.bits_above_log2 by (eapply N.le_lt_trans; [|exact Hgt]; by vm_compute).
    symmetry. apply andb_false_iff. right. apply N.leb_gt. lia.
Qed.
Lemma u64_max_bits n : N.testbit u64_max n = (n <? 64).
Proof. change u64_max with (N.ones 64). destruct (N.ltb_spec n 64); [by apply N.ones_spec_low|by apply N.ones_spec_high]. Qed.

Lemma below_bits x k n : x < 2 ^ k → k ≤ n → N.testbit x n = false.
Proof.
  intros Hx Hn. destruct (N.eq_0_gt_0_cases x) as [->|Hpos]; [apply N.bits_0|].
  apply N.bits_above_log2. apply N.log2_lt_pow2 in Hx; [lia|done].
Qed.

(** An address that fits the field has bits nowhere else. *)
Lemma addr_bits a n :
  a mod PAGE_SIZE = 0 → a < 2 ^ 52 → N.testbit a n = N.testbit a n && ((12 <=? n) && (n <=? 51)).
Proof.
  intros Ha Hlt. destruct (N.leb_spec 12 n) as [Hlo|Hlo].
  - destruct (N.leb_spec n 51) as [Hhi|Hhi]; simpl; [by rewrite andb_true_r|].
    rewrite andb_false_r. apply (below_bits a 52); [done|lia].
  - rewrite andb_false_r. change PAGE_SIZE with (2 ^ 12) in Ha.
    by rewrite <-(N.mod_pow2_bits_low a 12), Ha, N.bits_0.
Qed.

(** The address and the flags of an entry as they were set, when the flags keep off the field. *)
Definition flags_ok (f : PageTableFlags.t) : Prop :=
  PageTableFlags.bits f < 2 ^ 64 ∧ N.land (PageTableFlags.bits f) PageTableEntry.ADDR_MASK = 0.

Lemma flag_bits f n :
  flags_ok f → N.testbit (PageTableFlags.bits f) n
    = N.testbit (PageTableFlags.bits f) n && (n <? 64) && negb ((12 <=? n) && (n <=? 51)).
Proof.
  intros [Hlt Hz]. apply (f_equal (λ x, N.testbit x n)) in Hz. rewrite N.land_spec, mask_bits, N.bits_0 in Hz.
  destruct (N.testbit (PageTableFlags.bits f) n) eqn:E; [|done]. simpl in *.
  rewrite Hz. destruct (N.ltb_spec n 64); [done|]. rewrite (below_bits _ 64) in E by done. done.
Qed.

Lemma set_flags a f e :
  a mod PAGE_SIZE = 0 → a < 2 ^ 52 → flags_ok f →
  PageTableEntry.flags (PageTableEntry.set (PhysAddr.new a) f e) = f.
Proof.
  intros Ha Hlt Hf. unfold PageTableEntry.flags. destruct f as [b]. f_equal. simpl.
  apply N.bits_inj. intros n. unfold not64.
  rewrite N.land_spec, N.lor_spec, N.lxor_spec, mask_bits, u64_max_bits.
  rewrite (addr_bits a n Ha Hlt). pose proof (flag_bits _ n Hf) as E. simpl in E. revert E.
  destruct (N.ltb_spec n 64), (N.leb_spec n 51); [| |exfalso; lia|];
    destruct (N.testbit a n), (N.testbit b n), (12 <=? n); done.
Qed.
Lemma set_addr a f e :
  a mod PAGE_SIZE = 0 → a < 2 ^ 52 → flags_ok f →
  N.land (PageTableEntry.raw (PageTableEntry.set (PhysAddr.new a) f e)) PageTableEntry.ADDR_MASK = a.
Proof.
  intros Ha Hlt Hf. simpl. apply N.bits_inj. intros n.
  rewrite N.land_spec, N.lor_spec, mask_bits. pose proof (addr_bits a n Ha Hlt) as Ea.
  pose proof (flag_bits _ n Hf) as E. revert Ea E.
  destruct (N.testbit a n), (N.testbit (PageTableFlags.bits f) n), (n <? 64), (12 <=? n), (n <=? 51); done.
Qed.

Lemma to_flags_ok p : flags_ok (Permissions.to_flags p).
Proof. destruct p as [r w x u]. destruct w, x, u; split; vm_compute; done. Qed.

(** The indices as digits. *)
Lemma index_mod x k : N.land (N.shiftr x k) 0x1FF = (x / 2 ^ k) mod 512.
Proof. change 0x1FF with (N.ones 9). by rewrite N.land_ones, N.shiftr_div_pow2. Qed.
Lemma digit x k : x mod 2 ^ (k + 9) = x mod 2 ^ k + 2 ^ k * ((x / 2 ^ k) mod 512).
Proof. rewrite N.pow_add_r. change (2 ^ 9) with 512. apply N.Div0.mod_mul_r. Qed.

(** Creating address spaces one after the other. *)
Fixpoint create_spaces (n : nat) (m : PageTableManager.t)
    : outcome (list AddressSpaceHandle.t * PageTableManager.t) :=
  match n with
  | O => Return ([], m)
  | S n =>
      '(h, m) ← PageTableManager.create_address_space m;
      '(hs, m) ← create_spaces n m;
      Return (h :: hs, m)
  end.

Record manager_ok (m : PageTableManager.t) : Prop := {
  ok_aligned : PageTableManager.next_phys_addr m mod PAGE_SIZE = 0;
  ok_below : ∀ a t, PageTableManager.tables m !! a = Some t →
    a < PageTableManager.next_phys_addr m ∧ a mod PAGE_SIZE = 0
}.

Lemma create_ok m :
  manager_ok m → PageTableManager.next_phys_addr m + PAGE_SIZE ≤ u64_max →
  let a := PageTableManager.next_phys_addr m in
  PageTableManager.create_address_space m
    = Return (AddressSpaceHandle.new (PhysAddr.new a),
              PageTableManager.mk (a + PAGE_SIZE) (<[a := PageTable.new]> (PageTableManager.tables m)))
  ∧ manager_ok (PageTableManager.mk (a + PAGE_SIZE) (<[a := PageTable.new]> (PageTableManager.tables m)))
  ∧ PageTableManager.tables m !! a = None.
Proof.
  intros [Ha Hb] Hle a. unfold PageTableManager.create_address_space, PageTableManager.alloc_page, add_u64, checked_add.
  rewrite (proj2 (N.leb_le _ _)) by done. split; [done|]. split.
  - split; simpl.
    + rewrite N.Div0.add_mod. unfold a. rewrite Ha. done.
    + intros b t. rewrite lookup_insert_Some. intros [[<- <-]|[_ Hx]].
      * split; [unfold PAGE_SIZE; lia|done].
      * destruct (Hb _ _ Hx). split; [unfold PAGE_SIZE, a in *; lia|done].
  - destruct (PageTableManager.tables m !! a) as [t|] eqn:E; [|done]. destruct (Hb _ _ E). unfold a in *. lia.
Qed.

Lemma create_spaces_ok n m :
  manager_ok m → PageTableManager.next_phys_addr m + N.of_nat n * PAGE_SIZE ≤ u64_max →
  ∃ hs m', create_spaces n m = Return (hs, m') ∧ manager_ok m'
    ∧ length hs = n ∧ NoDup hs
    ∧ Forall (λ h, PageTableManager.next_phys_addr m ≤ AddressSpaceHandle.as_cr3 h
                   ∧ AddressSpaceHandle.as_cr3 h mod PAGE_SIZE = 0
                   ∧ PageTableManager.tables m' !! AddressSpaceHandle.as_cr3 h = Some PageTable.new) hs
    ∧ (∀ a, a < PageTableManager.next_phys_addr m →
        PageTableManager.tables m' !! a = PageTableManager.tables m !! a)
    ∧ size (PageTableManager.tables m') = (size (PageTableManager.tables m) + n)%nat.
Proof.
  revert m. induction n as [|n IH]; intros m Hm Hle; cbn [create_spaces].
  { exists [], m. split_and!; try done; try constructor; lia. }
  destruct (create_ok m Hm) as (-> & Hm1 & Hnone); [unfold PAGE_SIZE in *; lia|]. cbn [mbind outcome_bind].
  set (a := PageTableManager.next_phys_addr m) in *.
  destruct (IH _ Hm1) as (hs & m' & -> & Hm' & Hlen & Hnd & Hall & Hold & Hsz);
    [cbn [PageTableManager.next_phys_addr]; unfold PAGE_SIZE in *; lia|]. simpl in *.
  exists (AddressSpaceHandle.new (PhysAddr.new a) :: hs), m'. split; [done|].
  split_and!; [done|cbn [length]; congruence| | | |].
  - constructor; [|done]. intros Hin. rewrite Forall_forall in Hall. destruct (Hall _ Hin) as [Hlt _].
    unfold AddressSpaceHandle.as_cr3, PAGE_SIZE in Hlt. simpl in Hlt. lia.
  - constructor.
    + unfold AddressSpaceHandle.as_cr3. simpl. split; [done|]. split; [apply Hm|]. rewrite Hold by (unfold PAGE_SIZE; lia). apply lookup_insert_eq.
    + eapply Forall_impl; [exact Hall|]. intros h (H1 & H2 & H3). split_and!; [unfold PAGE_SIZE in *; lia|done|done].
  - intros b Hb. rewrite Hold by (unfold PAGE_SIZE; lia). apply lookup_insert_ne. lia.
  - rewrite Hsz. rewrite map_size_insert_None by done. lia.
Qed.
End PagingSpec.

Module PagingProps.
Import PagingSpec.

(** A page table entry set to a page-aligned address of up to 52 bits with given permissions
    gives back exactly that address, is present, and its flags say exactly what was permitted. *)
Theorem entry_keeps_address_and_permissions a p e :
  PhysAddr.is_aligned (PhysAddr.new a) = true → a < 2 ^ 52 →
  let e' := PageTableEntry.set (PhysAddr.new a) (Permissions.to_flags p) e in
  PageTableEntry.phys_addr e' = Some (PhysAddr.new a)
  ∧ PageTableFlags.contains (PageTableEntry.flags e') PageTableFlags.WRITABLE = Permissions.write p
  ∧ PageTableFlags.contains (PageTableEntry.flags e') PageTableFlags.USER = Permissions.user p
  ∧ PageTableFlags.contains (PageTableEntry.flags e') PageTableFlags.NO_EXECUTE = negb (Permissions.execute p).
Proof.
  intros Ha%N.eqb_eq Hlt e'. pose proof (to_flags_ok p) as Hf.
  unfold PageTableEntry.phys_addr, e'. rewrite set_flags, set_addr by done.
  destruct p as [r w x u]. split; [|split_and!]; destruct w, x, u; reflexivity.
Qed.

(** The four table indices and the page offset of a virtual address are its digits: each index
    is below 512, and together they are the low 48 bits, so two addresses with the same indices
    and offset agree there. *)
Theorem indices_are_the_digits v :
  let i4 := VirtAddr.pml4_index v in let i3 := VirtAddr.pdpt_index v in
  let i2 := VirtAddr.pd_index v in let i1 := VirtAddr.pt_index v in
  VirtAddr.as_u64 v mod 2 ^ 48 = VirtAddr.page_offset v + 2 ^ 12 * i1 + 2 ^ 21 * i2 + 2 ^ 30 * i3 + 2 ^ 39 * i4
  ∧ i4 < 512 ∧ i3 < 512 ∧ i2 < 512 ∧ i1 < 512 ∧ VirtAddr.page_offset v < PAGE_SIZE.
Proof.
  destruct v as [x]. unfold VirtAddr.pml4_index, VirtAddr.pdpt_index, VirtAddr.pd_index, VirtAddr.pt_index,
    VirtAddr.page_offset. simpl. rewrite !index_mod.
  assert (N.land x 0xFFF = x mod 2 ^ 12) as -> by (change 0xFFF with (N.ones 12); apply N.land_ones).
  split_and!; try (by apply N.mod_upper_bound).
  change (2 ^ 48) with (2 ^ (39 + 9)). rewrite (digit x 39). change (2 ^ 39) with (2 ^ (30 + 9)) at 1.
  rewrite (digit x 30). change (2 ^ 30) with (2 ^ (21 + 9)) at 1. rewrite (digit x 21).
  change (2 ^ 21) with (2 ^ (12 + 9)) at 1. rewrite (digit x 12). done.
Qed.

(** The address spaces that a fresh manager creates have distinct, page-aligned roots from one
    megabyte on, and each has its own empty table. *)
Theorem address_spaces_are_distinct n :
  0x100000 + N.of_nat n * PAGE_SIZE ≤ u64_max →
  ∃ hs m, create_spaces n PageTableManager.new = Return (hs, m)
    ∧ length hs = n ∧ NoDup hs ∧ PageTableManager.table_count m = N.of_nat n
    ∧ Forall (λ h, 0x100000 ≤ AddressSpaceHandle.as_cr3 h ∧ AddressSpaceHandle.as_cr3 h mod PAGE_SIZE = 0
        ∧ PageTableManager.tables m !! AddressSpaceHandle.as_cr3 h = Some PageTable.new) hs.
Proof.
  intros Hle. assert (manager_ok PageTableManager.new) as Hm.
  { split; [done|]. intros a t. simpl. by rewrite lookup_empty. }
  destruct (create_spaces_ok n PageTableManager.new Hm Hle) as (hs & m & Hc & _ & Hlen & Hnd & Hall & _ & Hsz).
  exists hs, m. split_and!; try done. unfold PageTableManager.table_count. by rewrite Hsz.
Qed.

(** Mapping and unmapping a page check their arguments and change nothing: no table entry is
    ever written, whatever the permissions. *)
Theorem map_page_writes_no_entry h v p perms m :
  (PageTableManager.map_page h v p perms m).2 = m ∧ (PageTableManager.unmap_page h v m).2 = m.
Proof.
  unfold PageTableManager.map_page, PageTableManager.unmap_page.
  split; repeat case_match; done.
Qed.

Lemma entry_keeps_address_and_permissions_witness :
  PageTableEntry.phys_addr (PageTableEntry.set (PhysAddr.new 0x5000) (Permissions.to_flags Permissions.user_rx)
    PageTableEntry.unused) = Some (PhysAddr.new 0x5000).
Proof. by apply (entry_keeps_address_and_permissions 0x5000 Permissions.user_rx PageTableEntry.unused). Defined.

Lemma address_spaces_are_distinct_witness :
  ∃ hs m, create_spaces 2 PageTableManager.new = Return (hs, m) ∧ length hs = 2%nat ∧ NoDup hs.
Proof.
  destruct (address_spaces_are_distinct 2) as (hs & m & H1 & H2 & H3 & _); [vm_compute; discriminate|].
  exists hs, m. split; [exact H1|split; [exact H2|exact H3]].
Defined.
End PagingProps.
