(* ===== verification/Timers.v ===== *)
(** * Timers and interrupt lines of the x86-64 layer

    [hal_x86_64/src/timer.rs], [tick.rs], [interrupts.rs], [idt.rs] and the registry of
    [hal/src/interrupts.rs].  The ports are a device behind the class [PortIo]; a handler is a
    function on a world that the layer does not know. *)

From S2P Require Import Prelude Debug Input.
Open Scope string_scope.
Open Scope list_scope.
Open Scope N_scope.

(** ** Timers *)

(* hal/src/timer.rs:60-73 TimerDevice *)
Class TimerDevice (T : Type) := poll_ticks : T → outcome (N * T).
(* hal/src/timer.rs:75-88 TimerInterrupt *)
Class TimerInterrupt (T : Type) := {
  configure_periodic : N → T → T;
  enable_interrupts : T → T;
  disable_interrupts : T → T
}.

Module FakeTimerDevice.
(* hal_x86_64/src/timer.rs:41-47 FakeTimerDevice *)
Record t := mk { ticks : list N; index : nat }.
#[global] Instance rebuild_t : Rebuild t := λ d, mk (ticks d) (index d).
(* hal_x86_64/src/timer.rs:61-69 FakeTimerDevice::new *)
Fixpoint monotonic (l : list N) : bool :=
  match l with
  | a :: (b :: _) as r => (a <=? b) && monotonic r
  | _ => true
  end.
(* hal_x86_64/src/timer.rs:50-72 FakeTimerDevice::new *)
Definition new (ticks : list N) : outcome t := if monotonic ticks then Return (mk ticks 0) else Panic.
(* hal_x86_64/src/timer.rs:74-81 FakeTimerDevice::remaining *)
Definition remaining (d : t) : nat := length (ticks d) - index d.
(* hal_x86_64/src/timer.rs:84-97 FakeTimerDevice::poll_ticks *)
#[global] Instance fake_timer : TimerDevice t := λ d,
  match ticks d !! index d with
  | Some value => Return (value, d <| index ::= S |>)
  | None => match last (ticks d) with Some v => Return (v, d) | None => Return (0, d) end
  end.
End FakeTimerDevice.

Module PitTimer.
(* hal_x86_64/src/timer.rs:138-139 PitTimer::CHANNEL_0_DATA *)
Definition CHANNEL_0_DATA : N := 0x40.
(* hal_x86_64/src/timer.rs:140-141 PitTimer::COMMAND *)
Definition COMMAND : N := 0x43.
(* hal_x86_64/src/timer.rs:142-143 PitTimer::RELOAD_VALUE *)
Definition RELOAD_VALUE : N := 1193.
(* hal_x86_64/src/timer.rs:121-135 PitTimer *)
Record t (P : Type) := mk {
  port_io : P;
  cumulative_ticks : N;
  last_counter : N;
  initialized : bool;
  interrupts_enabled : bool;
  configured_hz : option N
}.
Arguments mk {P}.
Arguments port_io {P}.
Arguments cumulative_ticks {P}.
Arguments last_counter {P}.
Arguments initialized {P}.
Arguments interrupts_enabled {P}.
Arguments configured_hz {P}.

Section with_ports.
Context {P : Type} `{PortIo P}.
#[global] Instance rebuild_t : Rebuild (t P) := λ d,
  mk (port_io d) (cumulative_ticks d) (last_counter d) (initialized d) (interrupts_enabled d) (configured_hz d).
(* hal_x86_64/src/timer.rs:145-158 PitTimer::new *)
Definition new (p : P) : t P := mk p 0 0 false false None.
(* hal_x86_64/src/timer.rs:170-194 PitTimer::initialize *)
Definition initialize (d : t P) : outcome (t P) :=
  let COMMAND_BYTE := 54 in
  p ← outb COMMAND COMMAND_BYTE (port_io d);
  p ← outb CHANNEL_0_DATA (N.land RELOAD_VALUE 0xFF) p;
  p ← outb CHANNEL_0_DATA (N.land (N.shiftr RELOAD_VALUE 8) 0xFF) p;
  Return (d <| port_io := p |> <| initialized := true |>).
(* hal_x86_64/src/timer.rs:196-212 PitTimer::read_counter *)
Definition read_counter (d : t P) : outcome (N * t P) :=
  p ← outb COMMAND 0 (port_io d);
  '(low, p) ← inb CHANNEL_0_DATA p;
  '(high, p) ← inb CHANNEL_0_DATA p;
  Return (N.lor (N.land (N.shiftl high 8) 0xFFFF) low, d <| port_io := p |>).
(** The [u16] subtraction and addition panic out of range. *)
(* hal_x86_64/src/timer.rs:222-231 PitTimer::update_ticks *)
Definition elapsed (last_counter current_counter : N) : outcome N :=
  if current_counter <=? last_counter then Return (last_counter - current_counter)
  else if RELOAD_VALUE <? current_counter then Panic
  else let s := last_counter + (RELOAD_VALUE - current_counter) in
       if s <=? 0xFFFF then Return s else Panic.
(* hal_x86_64/src/timer.rs:214-235 PitTimer::update_ticks *)
Definition update_ticks (d : t P) : outcome (t P) :=
  '(current_counter, d) ← read_counter d;
  delta ← elapsed (last_counter d) current_counter;
  cumulative ← add_u64 (cumulative_ticks d) delta;
  Return (d <| cumulative_ticks := cumulative |> <| last_counter := current_counter |>).
(* hal_x86_64/src/timer.rs:238-250 PitTimer::poll_ticks *)
#[global] Instance pit_timer : TimerDevice (t P) := λ d,
  if initialized d then
    d ← update_ticks d;
    Return (cumulative_ticks d, d)
  else
    d ← initialize d;
    '(c, d) ← read_counter d;
    Return (0, d <| last_counter := c |>).
(* hal_x86_64/src/timer.rs:252-264 TimerInterrupt for PitTimer *)
#[global] Instance pit_interrupt : TimerInterrupt (t P) := {|
  configure_periodic hz d := d <| configured_hz := Some hz |>;
  enable_interrupts d := d <| interrupts_enabled := true |>;
  disable_interrupts d := d <| interrupts_enabled := false |>
|}.
End with_ports.
End PitTimer.

Module HpetTimer.
(* hal_x86_64/src/timer.rs:266-272 HpetTimer *)
Record t := mk { ticks : N; interrupts_enabled : bool; configured_hz : option N }.
#[global] Instance rebuild_t : Rebuild t := λ d, mk (ticks d) (interrupts_enabled d) (configured_hz d).
(* hal_x86_64/src/timer.rs:275-281 HpetTimer::new *)
Definition new : t := mk 0 false None.
(* hal_x86_64/src/timer.rs:283-286 HpetTimer::advance_ticks *)
Definition advance_ticks (delta : N) (d : t) : t := d <| ticks ::= λ n, saturating_add n delta |>.
(* hal_x86_64/src/timer.rs:305-309 HpetTimer::poll_ticks *)
#[global] Instance hpet_timer : TimerDevice t := λ d, Return (ticks d, d).
(* hal_x86_64/src/timer.rs:311-323 TimerInterrupt for HpetTimer *)
#[global] Instance hpet_interrupt : TimerInterrupt t := {|
  configure_periodic hz d := d <| configured_hz := Some hz |>;
  enable_interrupts d := d <| interrupts_enabled := true |>;
  disable_interrupts d := d <| interrupts_enabled := false |>
|}.
End HpetTimer.

(** ** Ticks ([hal_x86_64/src/tick.rs]) *)

Module TickSource.
(* hal_x86_64/src/tick.rs:12-17 TickSource *)
Inductive t (P : Type) := Pit (timer : PitTimer.t P) | Hpet (timer : HpetTimer.t).
Arguments Pit {P}.
Arguments Hpet {P}.
Section with_ports.
Context {P : Type} `{PortIo P}.
(* hal_x86_64/src/tick.rs:20-23 TickSource::pit *)
Definition pit (p : P) : t P := Pit (PitTimer.new p).
(* hal_x86_64/src/tick.rs:25-28 TickSource::hpet *)
Definition hpet : t P := Hpet HpetTimer.new.
(* hal_x86_64/src/tick.rs:30-36 TickSource::interrupts_enabled *)
Definition interrupts_enabled (s : t P) : bool :=
  match s with Pit d => PitTimer.interrupts_enabled d | Hpet d => HpetTimer.interrupts_enabled d end.
(* hal_x86_64/src/tick.rs:38-44 TickSource::configured_hz *)
Definition configured_hz (s : t P) : option N :=
  match s with Pit d => PitTimer.configured_hz d | Hpet d => HpetTimer.configured_hz d end.
(* hal_x86_64/src/tick.rs:47-54 TickSource::poll_ticks *)
#[global] Instance source_timer : TimerDevice (t P) := λ s,
  match s with
  | Pit d => '(n, d) ← poll_ticks d; Return (n, Pit d)
  | Hpet d => '(n, d) ← poll_ticks d; Return (n, Hpet d)
  end.
Definition both (f : PitTimer.t P → PitTimer.t P) (g : HpetTimer.t → HpetTimer.t) (s : t P) : t P :=
  match s with Pit d => Pit (f d) | Hpet d => Hpet (g d) end.
(* hal_x86_64/src/tick.rs:56-77 TimerInterrupt for TickSource *)
#[global] Instance source_interrupt : TimerInterrupt (t P) := {|
  configure_periodic hz := both (configure_periodic hz) (configure_periodic hz);
  enable_interrupts := both enable_interrupts enable_interrupts;
  disable_interrupts := both disable_interrupts disable_interrupts
|}.
End with_ports.
End TickSource.

Module KernelTickCounter.
(* hal_x86_64/src/tick.rs:79-85 KernelTickCounter *)
Record t (T : Type) := mk { timer : T; last_ticks : N; total_ticks : N }.
Arguments mk {T}.
Arguments timer {T}.
Arguments last_ticks {T}.
Arguments total_ticks {T}.
Section with_timer.
Context {T : Type} `{TimerDevice T}.
(* hal_x86_64/src/tick.rs:88-95 KernelTickCounter::new *)
Definition new (timer : T) : t T := mk timer 0 0.
(* hal_x86_64/src/tick.rs:97-104 KernelTickCounter::poll *)
Definition poll (c : t T) : outcome (N * t T) :=
  '(current, timer) ← poll_ticks (timer c);
  let delta := saturating_sub current (last_ticks c) in
  let total := saturating_add (total_ticks c) delta in
  Return (total, mk timer current total).
End with_timer.
End KernelTickCounter.

(** ** Interrupt lines *)

Module InterruptError.
(* hal/src/interrupts.rs:28-33 InterruptError *)
Inductive t := AlreadyRegistered (vector : N).
End InterruptError.
Module IdtError.
(* hal_x86_64/src/idt.rs:8-13 IdtError *)
Inductive t := AlreadyRegistered (vector : N) | NotRegistered (vector : N).
End IdtError.
Module IrqError.
(* hal_x86_64/src/interrupts.rs:100-106 IrqError *)
Inductive t := IdtNotInstalled | HandlerMissing (vector : N) | RegistrationFailed (vector : N).
End IrqError.

Section with_world.
(** What handlers do to the rest of the system. *)
Context {W : Type}.
Notation handler := (W → outcome W).

(* hal/src/interrupts.rs:35-42 InterruptRegistry *)
Record InterruptRegistry := mk_registry { reg_handlers : gmap N handler }.
(* hal/src/interrupts.rs:45-50 InterruptRegistry::new *)
Definition registry_new : InterruptRegistry := mk_registry ∅.
(* hal/src/interrupts.rs:52-59 InterruptRegistry::register *)
Definition registry_register (vector : N) (h : handler) (r : InterruptRegistry)
    : result unit InterruptError.t * InterruptRegistry :=
  match reg_handlers r !! vector with
  | Some _ => (Err (InterruptError.AlreadyRegistered vector), r)
  | None => (Ok tt, mk_registry (<[vector := h]> (reg_handlers r)))
  end.
(* hal/src/interrupts.rs:73-76 InterruptRegistry::handler *)
Definition registry_handler (vector : N) (r : InterruptRegistry) : option handler := reg_handlers r !! vector.
(* hal/src/interrupts.rs:78-81 InterruptRegistry::unregister *)
Definition registry_unregister (vector : N) (r : InterruptRegistry) : option handler * InterruptRegistry :=
  (reg_handlers r !! vector, mk_registry (delete vector (reg_handlers r))).

(* hal_x86_64/src/idt.rs:15-20 Idt *)
Record Idt := mk_idt { idt_handlers : list (option handler); idt_is_installed : bool }.
(* hal_x86_64/src/idt.rs:23-29 Idt::new *)
Definition idt_new : Idt := mk_idt (replicate 256 None) false.
(* hal_x86_64/src/idt.rs:31-34 Idt::install *)
Definition idt_install (i : Idt) : Idt := mk_idt (idt_handlers i) true.
(* hal_x86_64/src/idt.rs:41-49 Idt::register_handler *)
Definition idt_register (vector : N) (h : handler) (i : Idt) : outcome (result unit IdtError.t * Idt) :=
  slot ← slice_get (idt_handlers i) vector;
  match slot with
  | Some _ => Return (Err (IdtError.AlreadyRegistered vector), i)
  | None =>
      hs ← slice_set (idt_handlers i) vector (Some h);
      Return (Ok tt, mk_idt hs (idt_is_installed i))
  end.
(* hal_x86_64/src/idt.rs:51-54 Idt::handler *)
Definition idt_handler (vector : N) (i : Idt) : outcome (option handler) := slice_get (idt_handlers i) vector.
(* hal_x86_64/src/idt.rs:56-63 Idt::trigger *)
Definition idt_trigger (vector : N) (i : Idt) (w : W) : outcome (result unit IdtError.t * W) :=
  h ← idt_handler vector i;
  match h with
  | None => Return (Err (IdtError.NotRegistered vector), w)
  | Some h => w ← h w; Return (Ok tt, w)
  end.

(* hal_x86_64/src/interrupts.rs:12-13 IRQ_BASE_VECTOR *)
Definition IRQ_BASE_VECTOR : N := 32.
(* hal_x86_64/src/interrupts.rs:15-22 IrqLine *)
Inductive IrqLine := Timer | Keyboard | Vector (v : N).
#[global] Instance irq_eq_dec : EqDecision IrqLine.
Proof. solve_decision. Defined.
(* hal_x86_64/src/interrupts.rs:25-32 IrqLine::vector *)
Definition irq_vector (l : IrqLine) : N :=
  match l with Timer => IRQ_BASE_VECTOR | Keyboard => IRQ_BASE_VECTOR + 1 | Vector v => v end.
(* hal_x86_64/src/interrupts.rs:35-40 AckStrategy *)
Inductive AckStrategy := Pic | Apic.
(* hal_x86_64/src/interrupts.rs:42-69 PicController *)
Record PicController := mk_pic { pic_acks : N; pic_last : option IrqLine }.
(* hal_x86_64/src/interrupts.rs:57-60 PicController::acknowledge *)
Definition pic_acknowledge (irq : IrqLine) (c : PicController) : PicController :=
  mk_pic (saturating_add (pic_acks c) 1) (Some irq).
(* hal_x86_64/src/interrupts.rs:71-98 ApicController *)
Record ApicController := mk_apic { apic_acks : N; apic_last : option IrqLine }.
(* hal_x86_64/src/interrupts.rs:86-89 ApicController::acknowledge *)
Definition apic_acknowledge (irq : IrqLine) (c : ApicController) : ApicController :=
  mk_apic (saturating_add (apic_acks c) 1) (Some irq).

(* hal_x86_64/src/interrupts.rs:108-116 InterruptDispatcher *)
Record InterruptDispatcher := mk_dispatcher {
  idt : Idt;
  registry : InterruptRegistry;
  ack_strategy : AckStrategy;
  pic : PicController;
  apic : ApicController
}.
#[global] Instance rebuild_dispatcher : Rebuild InterruptDispatcher := λ d,
  mk_dispatcher (idt d) (registry d) (ack_strategy d) (pic d) (apic d).
(* hal_x86_64/src/interrupts.rs:119-128 InterruptDispatcher::new *)
Definition dispatcher_new : InterruptDispatcher :=
  mk_dispatcher idt_new registry_new Pic (mk_pic 0 None) (mk_apic 0 None).
(* hal_x86_64/src/interrupts.rs:130-133 InterruptDispatcher::install_idt *)
Definition install_idt (d : InterruptDispatcher) : InterruptDispatcher := d <| idt ::= idt_install |>.
(* hal_x86_64/src/interrupts.rs:135-138 InterruptDispatcher::idt_installed *)
Definition idt_installed (d : InterruptDispatcher) : bool := idt_is_installed (idt d).
(* hal_x86_64/src/interrupts.rs:140-143 InterruptDispatcher::set_ack_strategy *)
Definition set_ack_strategy (s : AckStrategy) (d : InterruptDispatcher) : InterruptDispatcher :=
  d <| ack_strategy := s |>.
(* hal_x86_64/src/interrupts.rs:145-162 InterruptDispatcher::register_irq_handler *)
Definition register_irq_handler (irq : IrqLine) (h : handler) (d : InterruptDispatcher)
    : outcome (result unit InterruptError.t * InterruptDispatcher) :=
  let vector := irq_vector irq in
  match registry_register vector h (registry d) with
  | (Err e, r) => Return (Err e, d <| registry := r |>)
  | (Ok _, r) =>
      let d := d <| registry := r |> in
      '(res, i) ← idt_register vector h (idt d);
      let d := d <| idt := i |> in
      match res with
      | Err _ =>
          Return (Err (InterruptError.AlreadyRegistered vector),
                  d <| registry ::= λ r, (registry_unregister vector r).2 |>)
      | Ok _ => Return (Ok tt, d)
      end
  end.
(* hal_x86_64/src/interrupts.rs:164-181 InterruptDispatcher::dispatch_irq *)
Definition dispatch_irq (irq : IrqLine) (d : InterruptDispatcher) (w : W)
    : outcome (result unit IrqError.t * (InterruptDispatcher * W)) :=
  if negb (idt_is_installed (idt d)) then Return (Err IrqError.IdtNotInstalled, (d, w))
  else
    let vector := irq_vector irq in
    '(r, w) ← idt_trigger vector (idt d) w;
    match r with
    | Err _ => Return (Err (IrqError.HandlerMissing vector), (d, w))
    | Ok _ =>
        Return (Ok tt,
          (match ack_strategy d with
           | Pic => d <| pic ::= pic_acknowledge irq |>
           | Apic => d <| apic ::= apic_acknowledge irq |>
           end, w))
    end.

(** ** The interrupt layer of the platform ([hal_x86_64/src/lib.rs]) *)

(* hal_x86_64/src/lib.rs:99-103 X86_64Interrupts *)
Record X86_64Interrupts := mk_x86 { enabled : bool; dispatcher : InterruptDispatcher }.
#[global] Instance rebuild_x86 : Rebuild X86_64Interrupts := λ x, mk_x86 (enabled x) (dispatcher x).
(* hal_x86_64/src/lib.rs:106-112 X86_64Interrupts::new *)
Definition x86_new : X86_64Interrupts := mk_x86 false dispatcher_new.
(* hal_x86_64/src/lib.rs:114-117 X86_64Interrupts::install_idt *)
Definition x86_install_idt (x : X86_64Interrupts) : X86_64Interrupts := x <| dispatcher ::= install_idt |>.
(* hal_x86_64/src/lib.rs:119-126 X86_64Interrupts::register_irq_handler *)
Definition x86_register_irq_handler (irq : IrqLine) (h : handler) (x : X86_64Interrupts)
    : outcome (result unit InterruptError.t * X86_64Interrupts) :=
  '(r, d) ← register_irq_handler irq h (dispatcher x);
  Return (r, x <| dispatcher := d |>).
(* hal_x86_64/src/lib.rs:133-136 X86_64Interrupts::dispatch_irq *)
Definition x86_dispatch_irq (irq : IrqLine) (x : X86_64Interrupts) (w : W)
    : outcome (result unit IrqError.t * (X86_64Interrupts * W)) :=
  '(r, (d, w)) ← dispatch_irq irq (dispatcher x) w;
  Return (r, (x <| dispatcher := d |>, w)).
(* hal_x86_64/src/lib.rs:138-141 X86_64Interrupts::set_ack_strategy *)
Definition x86_set_ack_strategy (s : AckStrategy) (x : X86_64Interrupts) : X86_64Interrupts :=
  x <| dispatcher ::= set_ack_strategy s |>.
(* hal_x86_64/src/lib.rs:151-154 X86_64Interrupts::enable_interrupts *)
Definition x86_enable_interrupts (x : X86_64Interrupts) : X86_64Interrupts := x <| enabled := true |>.
(* hal_x86_64/src/lib.rs:156-159 X86_64Interrupts::disable_interrupts *)
Definition x86_disable_interrupts (x : X86_64Interrupts) : X86_64Interrupts := x <| enabled := false |>.
(** A failed registration is dropped. *)
(* hal_x86_64/src/lib.rs:165-169 X86_64Interrupts::register_handler *)
Definition x86_register_handler (vector : N) (h : handler) (x : X86_64Interrupts) : outcome X86_64Interrupts :=
  '(_, x) ← x86_register_irq_handler (Vector vector) h x;
  Return x.
(* hal/src/interrupts.rs:61-71 InterruptRegistry::register_with_hal *)
Definition registry_register_with_hal (vector : N) (h : handler) (r : InterruptRegistry) (x : X86_64Interrupts)
    : outcome (result unit InterruptError.t * (InterruptRegistry * X86_64Interrupts)) :=
  match registry_register vector h r with
  | (Err e, r) => Return (Err e, (r, x))
  | (Ok _, r) => x ← x86_register_handler vector h x; Return (Ok tt, (r, x))
  end.
End with_world.
Arguments InterruptRegistry : clear implicits.
Arguments Idt : clear implicits.
Arguments InterruptDispatcher : clear implicits.
Arguments X86_64Interrupts : clear implicits.

(** ** The interval timer counts true ticks *)

Module PitSpec.
Import PitTimer.

(** The counter chip, as its data sheet describes it: it counts down from the reload value and
    starts over; a latch command freezes the count, which the data port then gives low byte
    first.  [times] are the ticks at which the following latch commands arrive. *)
Record chip := mk_chip { times : list N; latched : N; high_next : bool }.
Definition count (tick : N) : N := RELOAD_VALUE - tick mod RELOAD_VALUE.
#[global] Instance chip_ports : PortIo chip := {|
  inb port c :=
    if port =? CHANNEL_0_DATA then
      if high_next c then Return (latched c / 256, mk_chip (times c) (latched c) false)
      else Return (latched c mod 256, mk_chip (times c) (latched c) true)
    else Return (0, c);
  outb port v c :=
    if (port =? COMMAND) && (v =? 0) then
      match times c with
      | t :: ts => Return (mk_chip ts (count t) false)
      | [] => Return c
      end
    else Return c
|}.

Lemma count_range t : 1 ≤ count t ∧ count t ≤ RELOAD_VALUE.
Proof.
  unfold count, RELOAD_VALUE. pose proof (N.mod_upper_bound t 1193 ltac:(done)) as Hr.
  set (r := t mod 1193) in *. clearbody r. lia.
Qed.

Lemma bytes_combine c : c < 65536 → N.lor (N.land (N.shiftl (c / 256) 8) 0xFFFF) (c mod 256) = c.
Proof.
  intros Hc. change 0xFFFF with (N.ones 16). rewrite N.land_ones, N.shiftl_mul_pow2.
  change (2 ^ 8) with 256. rewrite N.mod_small.
  - rewrite <-N.lxor_lor, <-N.add_nocarry_lxor.
    + rewrite N.mul_comm. symmetry. by apply N.div_mod.
    + change 256 with (2 ^ 8). rewrite <-N.shiftl_mul_pow2. apply N.bits_inj. intros n. rewrite N.land_spec, N.bits_0.
      destruct (N.lt_ge_cases n 8) as [Hn|Hn]; [by rewrite N.shiftl_spec_low|].
      by rewrite N.mod_pow2_bits_high, andb_false_r.
    + change 256 with (2 ^ 8). rewrite <-N.shiftl_mul_pow2. apply N.bits_inj. intros n. rewrite N.land_spec, N.bits_0.
      destruct (N.lt_ge_cases n 8) as [Hn|Hn]; [by rewrite N.shiftl_spec_low|].
      by rewrite N.mod_pow2_bits_high, andb_false_r.
  - change (2 ^ 16) with 65536. pose proof (N.Div0.mul_div_le c 256). lia.
Qed.

Lemma read_chip (d : PitTimer.t chip) t ts :
  times (port_io d) = t :: ts →
  ∃ c', read_counter d = Return (count t, d <| port_io := c' |>) ∧ times c' = ts.
Proof.
  intros Ht. unfold read_counter. cbn [outb inb chip_ports]. simpl. rewrite Ht. simpl.
  eexists. rewrite bytes_combine; [done|]. destruct (count_range t). unfold RELOAD_VALUE in *. lia.
Qed.

(** Between two latches less than a whole period apart the counters give the ticks elapsed. *)
Lemma delta_is_elapsed t t' :
  t ≤ t' → t' < t + RELOAD_VALUE →
  (if count t' <=? count t then count t - count t' else count t + (RELOAD_VALUE - count t')) = t' - t.
Proof.
  intros Hle Hlt. unfold count, RELOAD_VALUE in *. assert (∃ d, t' = t + d) as [d ->] by (exists (t' - t); lia).
  replace (t + d - t) with d by lia.
  assert (d < 1193) as Hd by lia. rewrite N.Div0.add_mod, (N.mod_small d) by done.
  pose proof (N.mod_upper_bound t 1193 ltac:(done)) as Hr. set (r := t mod 1193) in *. clearbody r.
  destruct (N.lt_ge_cases (r + d) 1193) as [H1|H1].
  - rewrite N.mod_small by done. destruct (N.leb_spec (1193 - (r + d)) (1193 - r)); lia.
  - assert ((r + d) mod 1193 = r + d - 1193) as ->.
    { transitivity ((r + d - 1193) mod 1193); [|apply N.mod_small; lia].
      rewrite <-(N.Div0.mod_add (r + d - 1193) 1 1193). f_equal. lia. }
    destruct (N.leb_spec (1193 - (r + d - 1193)) (1193 - r)); lia.
Qed.

Lemma elapsed_count t t' :
  t ≤ t' → t' < t + RELOAD_VALUE → elapsed (count t) (count t') = Return (t' - t).
Proof.
  intros Hle Hlt. pose proof (delta_is_elapsed t t' Hle Hlt) as Hd. unfold elapsed.
  destruct (count_range t), (count_range t'). destruct (count t' <=? count t); [by rewrite Hd|].
  rewrite (proj2 (N.ltb_ge _ _)) by done. rewrite Hd.
  by rewrite (proj2 (N.leb_le _ _)) by (unfold RELOAD_VALUE in *; lia).
Qed.

(** Polls one after the other, with what they return. *)
Fixpoint polls {T} `{TimerDevice T} (n : nat) (d : T) : outcome (list N * T) :=
  match n with
  | O => Return ([], d)
  | S n =>
      '(v, d) ← poll_ticks d;
      '(vs, d) ← polls n d;
      Return (v :: vs, d)
  end.

Lemma poll_initialized (d : PitTimer.t chip) :
  initialized d = true → poll_ticks d = (d ← update_ticks d; Return (cumulative_ticks d, d)).
Proof. intros Hi. unfold poll_ticks, pit_timer. by rewrite Hi. Qed.
Lemma poll_first (d : PitTimer.t chip) :
  initialized d = false →
  poll_ticks d = (d ← initialize d; '(c, d) ← read_counter d; Return (0, d <| last_counter := c |>)).
Proof. intros Hi. unfold poll_ticks, pit_timer. by rewrite Hi. Qed.

(** Ticks that never go back and never jump a whole period. *)
Fixpoint close (t : N) (ts : list N) : Prop :=
  match ts with [] => True | t' :: ts => t ≤ t' ∧ t' < t + RELOAD_VALUE ∧ close t' ts end.

Lemma polls_running t0 t ts (d : PitTimer.t chip) :
  initialized d = true → times (port_io d) = ts → last_counter d = count t → t0 ≤ t →
  cumulative_ticks d = t - t0 → close t ts → Forall (λ t', t' ≤ u64_max) ts →
  ∃ d', polls (length ts) d = Return ((λ t', t' - t0) <$> ts, d').
Proof.
  revert t d. induction ts as [|t' ts IH]; intros t d Hi Ht Hl Ht0 Hc Hcl Hmax; [by eexists|].
  destruct Hcl as (Hle & Hlt & Hcl). inversion_clear Hmax as [|? ? Hm Hmax'].
  cbn [polls length]. rewrite poll_initialized by done.
  destruct (read_chip d t' ts Ht) as (c' & Hr & Hts). unfold update_ticks. rewrite Hr. cbn [mbind outcome_bind].
  change (last_counter (d <| port_io := c' |>)) with (last_counter d).
  rewrite Hl, elapsed_count by done.
  cbn [mbind outcome_bind]. unfold add_u64, checked_add. simpl. rewrite Hc.
  rewrite (proj2 (N.leb_le _ _)) by (unfold u64_max in *; lia). simpl.
  match goal with |- context [polls (length ts) ?x] =>
    destruct (IH t' x) as [d' ->]; [done|done|done|lia|simpl; lia|done|done|] end.
  simpl. eexists. do 3 f_equal. lia.
Qed.

(** Polled again before a whole period of the chip has passed, the interval timer returns
    exactly the number of ticks since its first poll, across every wrap of the counter. *)
Theorem pit_counts_elapsed_ticks t0 ts c h :
  close t0 ts → Forall (λ t, t ≤ u64_max) ts →
  ∃ d, polls (S (length ts)) (new (mk_chip (t0 :: ts) c h)) = Return (0 :: ((λ t, t - t0) <$> ts), d).
Proof.
  intros Hcl Hmax. cbn [polls]. rewrite poll_first by done. unfold initialize.
  cbn [outb chip_ports port_io new]. change (COMMAND =? COMMAND) with true. simpl (54 =? 0).
  change (CHANNEL_0_DATA =? COMMAND) with false. cbn [andb mbind outcome_bind].
  match goal with |- context [read_counter ?x] => destruct (read_chip x t0 ts eq_refl) as (c' & -> & Hts) end.
  cbn [mbind outcome_bind].
  match goal with |- context [polls (length ts) ?x] =>
    destruct (polls_running t0 t0 ts x) as [d' ->]; try done; [simpl; lia|] end.
  simpl. by eexists.
Qed.

Lemma pit_counts_elapsed_ticks_witness :
  ∃ d, polls 4 (new (mk_chip [5; 1000; 2000; 3100] 0 false)) = Return ([0; 995; 1995; 3095], d).
Proof.
  apply (pit_counts_elapsed_ticks 5 [1000; 2000; 3100] 0 false).
  - vm_compute. repeat split; discriminate.
  - repeat constructor; vm_compute; discriminate.
Defined.
End PitSpec.

(** ** Dispatch runs what was registered *)

Module IrqSpec.
Section with_world.
Context {W : Type}.
Notation handler := (W → outcome W).
Implicit Types d : InterruptDispatcher W.

(** The handler that was registered for a vector, as the registry knows it. *)
Definition registered (v : N) d : option handler := reg_handlers (registry d) !! v.

Inductive op := Register (irq : IrqLine) (h : handler) | Install | SetAck (s : AckStrategy) | Dispatch (irq : IrqLine) (w : W).
(** A vector is a byte. *)
Definition op_ok (o : op) : Prop :=
  match o with Register irq _ | Dispatch irq _ => irq_vector irq < 256 | _ => True end.
Definition step (o : op) d : outcome (InterruptDispatcher W) :=
  match o with
  | Register irq h => '(_, d) ← register_irq_handler irq h d; Return d
  | Install => Return (install_idt d)
  | SetAck s => Return (set_ack_strategy s d)
  | Dispatch irq w => '(_, (d, _)) ← dispatch_irq irq d w; Return d
  end.
Inductive reach : InterruptDispatcher W → Prop :=
| reach_new : reach dispatcher_new
| reach_step o d d' : reach d → op_ok o → step o d = Return d' → reach d'.

(** The table and the registry hold the same handlers. *)
Record irq_inv d : Prop := {
  inv_length : length (idt_handlers (idt d)) = 256%nat;
  inv_agree : ∀ v, v < 256 → idt_handlers (idt d) !! N.to_nat v = Some (registered v d)
}.

Lemma irq_inv_new : irq_inv dispatcher_new.
Proof.
  split; [done|]. intros v Hv.
  change (idt_handlers (idt dispatcher_new)) with (replicate 256 (None : option handler)).
  rewrite lookup_replicate_2 by lia. unfold registered. simpl. by rewrite lookup_empty.
Qed.

Lemma register_spec irq h d :
  irq_inv d → irq_vector irq < 256 →
  match registered (irq_vector irq) d with
  | Some _ => register_irq_handler irq h d = Return (Err (InterruptError.AlreadyRegistered (irq_vector irq)), d)
  | None => ∃ d', register_irq_handler irq h d = Return (Ok tt, d') ∧ irq_inv d'
      ∧ (∀ v, registered v d' = if decide (v = irq_vector irq) then Some h else registered v d)
      ∧ idt_is_installed (idt d') = idt_is_installed (idt d)
  end.
Proof.
  intros [Hlen Hag] Hv. unfold register_irq_handler, registry_register, registered in *.
  destruct (reg_handlers (registry d) !! irq_vector irq) as [h0|] eqn:E; [by destruct d|].
  unfold idt_register, slice_get, slice_set. simpl. rewrite (Hag _ Hv), E. simpl.
  assert (is_Some (idt_handlers (idt d) !! N.to_nat (irq_vector irq))) as Hs by (rewrite (Hag _ Hv); eauto).
  destruct (decide _) as [Hd|Hd]; [|exfalso; apply Hd; rewrite Hlen; lia]. simpl.
  eexists. split; [done|]. split_and!; [split; simpl| |done].
  - by rewrite length_insert.
  - intros v Hv'. destruct (decide (v = irq_vector irq)) as [->|Hne].
    + rewrite list_lookup_insert_eq by (rewrite Hlen; lia). unfold registered. simpl. by rewrite lookup_insert_eq.
    + rewrite list_lookup_insert_ne by lia. unfold registered. simpl. rewrite lookup_insert_ne by done. by apply Hag.
  - intros v. simpl. destruct (decide (v = irq_vector irq)) as [->|Hne]; [apply lookup_insert_eq|by apply lookup_insert_ne].
Qed.

(** What a dispatch does, by cases. *)
Lemma dispatch_spec irq d w :
  irq_inv d → irq_vector irq < 256 →
  dispatch_irq irq d w =
  if idt_is_installed (idt d) then
    match registered (irq_vector irq) d with
    | None => Return (Err (IrqError.HandlerMissing (irq_vector irq)), (d, w))
    | Some h =>
        w ← h w;
        Return (Ok tt, (match ack_strategy d with
                        | Pic => d <| pic ::= pic_acknowledge irq |>
                        | Apic => d <| apic ::= apic_acknowledge irq |>
                        end, w))
    end
  else Return (Err IrqError.IdtNotInstalled, (d, w)).
Proof.
  intros [_ Hag] Hv. unfold dispatch_irq. destruct (idt_is_installed (idt d)); [|done]. simpl.
  unfold idt_trigger, idt_handler, slice_get. rewrite (Hag _ Hv). simpl.
  destruct (registered (irq_vector irq) d) as [h|]; [|done]. by destruct (h w).
Qed.

Lemma irq_inv_same d d' : irq_inv d → idt_handlers (idt d') = idt_handlers (idt d) →
  registry d' = registry d → irq_inv d'.
Proof. intros [Hl Ha] E1 E2. split; unfold registered; rewrite ?E1, ?E2; done. Qed.

Lemma reach_irq_inv d : reach d → irq_inv d.
Proof.
  induction 1 as [|o d d' _ IH Hok Hs]; [apply irq_inv_new|]. destruct o as [irq h| |s|irq w]; simpl in Hs.
  - pose proof (register_spec irq h d IH Hok) as Hr. destruct (registered _ d).
    + rewrite Hr in Hs. by injection Hs as <-.
    + destruct Hr as (d1 & E & H1 & _). rewrite E in Hs. by injection Hs as <-.
  - injection Hs as <-. by apply (irq_inv_same d).
  - injection Hs as <-. by apply (irq_inv_same d).
  - rewrite (dispatch_spec irq d w IH Hok) in Hs. destruct (idt_is_installed (idt d)); [|by injection Hs as <-].
    destruct (registered _ d) as [h|]; [|by injection Hs as <-].
    destruct (h w); try done. simpl in Hs. injection Hs as <-. by destruct (ack_strategy d); apply (irq_inv_same d).
Qed.

(** In every reachable state an interrupt line runs exactly the handler that was registered
    for its vector, once, and is then acknowledged at the selected controller and nowhere else;
    without a table or a handler nothing runs, nothing is acknowledged and an error says so. *)
Theorem irq_runs_registered_handler irq d w :
  reach d → irq_vector irq < 256 →
  dispatch_irq irq d w =
  if idt_is_installed (idt d) then
    match registered (irq_vector irq) d with
    | None => Return (Err (IrqError.HandlerMissing (irq_vector irq)), (d, w))
    | Some h =>
        w ← h w;
        Return (Ok tt, (match ack_strategy d with
                        | Pic => d <| pic ::= pic_acknowledge irq |>
                        | Apic => d <| apic ::= apic_acknowledge irq |>
                        end, w))
    end
  else Return (Err IrqError.IdtNotInstalled, (d, w)).
Proof. intros Hr Hv. by apply dispatch_spec; [apply reach_irq_inv|]. Qed.

(** A handler once registered is never replaced: a second registration of the same vector
    is refused and changes nothing, and registering another vector leaves it in place. *)
Theorem registered_handler_stays irq h d v h0 :
  reach d → irq_vector irq < 256 → registered v d = Some h0 →
  ∃ r d', register_irq_handler irq h d = Return (r, d') ∧ registered v d' = Some h0
    ∧ (v = irq_vector irq → d' = d ∧ is_err r = true).
Proof.
  intros Hr Hv Hh. pose proof (register_spec irq h d (reach_irq_inv d Hr) Hv) as Hs.
  destruct (registered (irq_vector irq) d) as [h1|] eqn:E.
  - rewrite Hs. eexists _, _. split; [done|]. done.
  - destruct Hs as (d' & -> & _ & Hreg & _). eexists _, _. split; [done|]. rewrite Hreg.
    destruct (decide (v = irq_vector irq)) as [->|Hne]; [congruence|]. done.
Qed.
End with_world.

(** Interrupts that are disabled are dispatched all the same. *)
Lemma disabled_interrupts_dispatch {W} irq (x : X86_64Interrupts W) w :
  x86_dispatch_irq irq (x86_disable_interrupts x) w =
  ('(r, (x', w')) ← x86_dispatch_irq irq x w; Return (r, (x86_disable_interrupts x', w'))).
Proof. unfold x86_dispatch_irq. simpl. by destruct (dispatch_irq irq (dispatcher x) w) as [[r [d' w']]| |]. Qed.

(** *** A concrete dispatcher, with a counter as the world *)
Definition tick (w : N) : outcome N := Return (w + 1).
Definition ready : InterruptDispatcher N :=
  install_idt (match register_irq_handler Timer tick dispatcher_new with Return (_, d) => d | _ => dispatcher_new end).
Lemma ready_reach : reach ready.
Proof.
  apply (reach_step Install (match register_irq_handler Timer tick dispatcher_new with
                             | Return (_, d) => d | _ => dispatcher_new end)); [|done|done].
  apply (reach_step (Register Timer tick) dispatcher_new); [constructor|done|reflexivity].
Qed.

Lemma irq_runs_registered_handler_witness :
  dispatch_irq Timer ready 7 = Return (Ok tt, (ready <| pic ::= pic_acknowledge Timer |>, 8)).
Proof.
  rewrite (irq_runs_registered_handler Timer ready 7 ready_reach eq_refl). vm_compute. reflexivity.
Defined.
Lemma registered_handler_stays_witness :
  ∃ r d', register_irq_handler (Vector 32) tick ready = Return (r, d') ∧ registered 32 d' = Some tick.
Proof.
  destruct (registered_handler_stays (Vector 32) tick ready 32 tick ready_reach eq_refl eq_refl)
    as (r & d' & H1 & H2 & _).
  exists r, d'. split; [exact H1|exact H2].
Defined.
End IrqSpec.

(** ** The tick counter of the kernel *)

Module TickSpec.
Import KernelTickCounter.

Fixpoint polled {T} `{TimerDevice T} (n : nat) (c : KernelTickCounter.t T) : outcome (list N * KernelTickCounter.t T) :=
  match n with
  | O => Return ([], c)
  | S n =>
      '(v, c) ← poll c;
      '(vs, c) ← polled n c;
      Return (v :: vs, c)
  end.

Fixpoint ascending (a : N) (l : list N) : Prop :=
  match l with [] => True | b :: l => a ≤ b ∧ b ≤ u64_max ∧ ascending b l end.

Lemma polled_follows {T} `{TimerDevice T} n (d : T) vs d' a :
  PitSpec.polls n d = Return (vs, d') → ascending a vs → a ≤ u64_max →
  ∃ c, polled n (mk d a a) = Return (vs, c).
Proof.
  revert d d' vs a. induction n as [|n IH]; intros d d' vs a Hp Ha Hm; simpl in *.
  { injection Hp as <- _. by eexists. }
  unfold poll. simpl. destruct (poll_ticks d) as [[v d1]| |]; try done. simpl in Hp |- *.
  destruct (PitSpec.polls n d1) as [[vs' d2]| |] eqn:E; try done. injection Hp as <- _.
  destruct Ha as (Hle & Hv & Ha). unfold saturating_add, saturating_sub.
  replace (a + (v - a)) with v by lia. rewrite N.min_l by done.
  destruct (IH d1 d2 vs' v E Ha Hv) as [c ->]. simpl. by eexists.
Qed.

(** Over a timer whose readings do not decrease, the kernel's tick counter returns exactly the
    readings of the timer. *)
Theorem tick_counter_follows_timer {T} `{TimerDevice T} n (d : T) vs d' :
  PitSpec.polls n d = Return (vs, d') → ascending 0 vs → ∃ c, polled n (new d) = Return (vs, c).
Proof. intros Hp Ha. by apply (polled_follows n d vs d' 0). Qed.

Definition fake : FakeTimerDevice.t := FakeTimerDevice.mk [1; 5; 5; 9] 0.
Lemma tick_counter_follows_timer_witness : ∃ c, polled 5 (new fake) = Return ([1; 5; 5; 9; 9], c).
Proof.
  eapply (tick_counter_follows_timer 5 fake [1; 5; 5; 9; 9]); [reflexivity|].
  vm_compute. repeat split; discriminate.
Defined.
End TickSpec.
