(* ===== verification/Virtio.v ===== *)
(** * The virtio block driver

    [hal_x86_64/src/virtio.rs] and [virtio_blk.rs]: the split virtqueue with its descriptor table,
    available and used rings, the registers of a memory-mapped device, and the block driver that
    sends one request at a time and polls for its completion.

    The device is not code of the repository: it is the parameter [VirtioBus], the reads and
    writes of its registers and what it does to the memory it shares with the driver each time
    the driver looks at the used ring.  Addresses of Rust values are arguments.

    The second part proves the driver: it never panics, and requests reach the device. *)

From S2P Require Import Prelude Debug BlockStore Executable ExecProps.
Open Scope string_scope.
Open Scope list_scope.
Open Scope N_scope.

(** ** Registers and constants *)

(* hal_x86_64/src/virtio.rs:15-40 VIRTIO_MMIO_MAGIC_VALUE *)
Inductive MmioRegister :=
| MagicValue | Version | DeviceId | VendorId | DeviceFeatures | DeviceFeaturesSel | DriverFeatures
| DriverFeaturesSel | QueueSel | QueueNumMax | QueueNum | QueueReady | QueueNotify | InterruptStatus
| InterruptAck | Status | QueueDescLow | QueueDescHigh | QueueAvailLow | QueueAvailHigh | QueueUsedLow
| QueueUsedHigh | ConfigGeneration | Config.
(* hal_x86_64/src/virtio.rs:16-40 VIRTIO_MMIO_CONFIG *)
Definition register_offset (r : MmioRegister) : N :=
  match r with
  | MagicValue => 0x000 | Version => 0x004 | DeviceId => 0x008 | VendorId => 0x00c
  | DeviceFeatures => 0x010 | DeviceFeaturesSel => 0x014 | DriverFeatures => 0x020
  | DriverFeaturesSel => 0x024 | QueueSel => 0x030 | QueueNumMax => 0x034 | QueueNum => 0x038
  | QueueReady => 0x044 | QueueNotify => 0x050 | InterruptStatus => 0x060 | InterruptAck => 0x064
  | Status => 0x070 | QueueDescLow => 0x080 | QueueDescHigh => 0x084 | QueueAvailLow => 0x090
  | QueueAvailHigh => 0x094 | QueueUsedLow => 0x0a0 | QueueUsedHigh => 0x0a4
  | ConfigGeneration => 0x0fc | Config => 0x100
  end.
(* hal_x86_64/src/virtio.rs:42-43 VIRTIO_STATUS_ACKNOWLEDGE *)
Definition VIRTIO_STATUS_ACKNOWLEDGE : N := 1.
(* hal_x86_64/src/virtio.rs:44-44 VIRTIO_STATUS_DRIVER *)
Definition VIRTIO_STATUS_DRIVER : N := 2.
(* hal_x86_64/src/virtio.rs:45-45 VIRTIO_STATUS_DRIVER_OK *)
Definition VIRTIO_STATUS_DRIVER_OK : N := 4.
(* hal_x86_64/src/virtio.rs:46-46 VIRTIO_STATUS_FEATURES_OK *)
Definition VIRTIO_STATUS_FEATURES_OK : N := 8.
(* hal_x86_64/src/virtio.rs:49-50 VIRTIO_DEVICE_ID_BLOCK *)
Definition VIRTIO_DEVICE_ID_BLOCK : N := 2.
(* hal_x86_64/src/virtio.rs:52-53 VIRTIO_MMIO_MAGIC *)
Definition VIRTIO_MMIO_MAGIC : N := 0x74726976.
(* hal_x86_64/src/virtio.rs:55-56 VIRTQ_DESC_F_NEXT *)
Definition VIRTQ_DESC_F_NEXT : N := 1.
(* hal_x86_64/src/virtio.rs:57-57 VIRTQ_DESC_F_WRITE *)
Definition VIRTQ_DESC_F_WRITE : N := 2.
(* hal_x86_64/src/virtio.rs:59-60 VIRTQ_MAX_SIZE *)
Definition VIRTQ_MAX_SIZE : N := 256.
Definition u16_max : N := 65535.

(** ** The virtqueue *)

Module VirtqDesc.
(* hal_x86_64/src/virtio.rs:62-74 VirtqDesc *)
Record t := mk { addr : N; len : N; flags : N; next : N }.
#[global] Instance eq_dec : EqDecision t.
Proof. solve_decision. Defined.
#[global] Instance rebuild_t : Rebuild t := λ d, mk (addr d) (len d) (flags d) (next d).
(* hal_x86_64/src/virtio.rs:77-84 VirtqDesc::new *)
Definition new : t := mk 0 0 0 0.
End VirtqDesc.

Module VirtqAvail.
(* hal_x86_64/src/virtio.rs:93-100 VirtqAvail *)
Record t := mk { flags : N; idx : N; ring : list N; used_event : N }.
#[global] Instance rebuild_t : Rebuild t := λ a, mk (flags a) (idx a) (ring a) (used_event a).
(* hal_x86_64/src/virtio.rs:103-110 VirtqAvail::new *)
Definition new : t := mk 0 0 (replicate (N.to_nat VIRTQ_MAX_SIZE) 0) 0.
End VirtqAvail.

Module VirtqUsedElem.
(* hal_x86_64/src/virtio.rs:119-125 VirtqUsedElem *)
Record t := mk { id : N; len : N }.
End VirtqUsedElem.

Module VirtqUsed.
(* hal_x86_64/src/virtio.rs:127-134 VirtqUsed *)
Record t := mk { flags : N; idx : N; ring : list VirtqUsedElem.t; avail_event : N }.
#[global] Instance rebuild_t : Rebuild t := λ u, mk (flags u) (idx u) (ring u) (avail_event u).
(* hal_x86_64/src/virtio.rs:137-144 VirtqUsed::new *)
Definition new : t := mk 0 0 (replicate (N.to_nat VIRTQ_MAX_SIZE) (VirtqUsedElem.mk 0 0)) 0.
End VirtqUsed.

Module Virtqueue.
(* hal_x86_64/src/virtio.rs:153-169 Virtqueue *)
Record t := mk {
  size : N;
  desc : list VirtqDesc.t;
  avail : VirtqAvail.t;
  used : VirtqUsed.t;
  last_used_idx : N;
  free_head : N;
  num_free : N
}.
#[global] Instance rebuild_t : Rebuild t := λ q,
  mk (size q) (desc q) (avail q) (used q) (last_used_idx q) (free_head q) (num_free q).
(** [memory] is what the pointer to the descriptors leads to. *)
(* hal_x86_64/src/virtio.rs:172-203 Virtqueue::new *)
Definition new (size : N) (memory : list VirtqDesc.t) (avail : VirtqAvail.t) (used : VirtqUsed.t) : t :=
  let desc := take (N.to_nat size) memory in
  let desc := imap (λ i d, d <| VirtqDesc.next := if N.of_nat i + 1 <? size then N.of_nat i + 1 else 0 |>) desc in
  mk size desc avail used 0 0 size.
(** The loop that follows [count] links. *)
(* hal_x86_64/src/virtio.rs:214-217 Virtqueue::alloc_desc *)
Fixpoint follow (count : nat) (desc : list VirtqDesc.t) (idx : N) : outcome N :=
  match count with
  | O => Return idx
  | S count => d ← slice_get desc idx; follow count desc (VirtqDesc.next d)
  end.
(* hal_x86_64/src/virtio.rs:205-222 Virtqueue::alloc_desc *)
Definition alloc_desc (count : N) (q : t) : outcome (option N * t) :=
  if num_free q <? count then Return (None, q)
  else
    let head := free_head q in
    idx ← follow (N.to_nat count) (desc q) head;
    Return (Some head, q <| free_head := idx |> <| num_free ::= λ n, n - count |>).
Definition has_next (d : VirtqDesc.t) : bool := negb (N.land (VirtqDesc.flags d) VIRTQ_DESC_F_NEXT =? 0).
(** The loop; [num_free] is a [u16], so it cannot go round more than 65536 times. *)
(* hal_x86_64/src/virtio.rs:227-240 Virtqueue::free_desc *)
Fixpoint free_loop (fuel : nat) (head idx : N) (q : t) : outcome t :=
  match fuel with
  | O => Diverge
  | S fuel =>
      d ← slice_get (desc q) idx;
      if num_free q <? u16_max then
        let q := q <| num_free ::= λ n, n + 1 |> in
        if has_next d then free_loop fuel head (VirtqDesc.next d) q
        else
          ds ← slice_set (desc q) idx (d <| VirtqDesc.next := free_head q |>);
          Return (q <| desc := ds |> <| free_head := head |>)
      else Panic
  end.
(* hal_x86_64/src/virtio.rs:224-241 Virtqueue::free_desc *)
Definition free_desc (head : N) (q : t) : outcome t := free_loop (N.to_nat (u16_max + 1)) head head q.
(** [idx % self.size] panics on an empty queue. *)
(* hal_x86_64/src/virtio.rs:243-248 Virtqueue::add_to_avail *)
Definition add_to_avail (desc_head : N) (q : t) : outcome t :=
  let idx := VirtqAvail.idx (avail q) in
  if size q =? 0 then Panic
  else
    ring ← slice_set (VirtqAvail.ring (avail q)) (idx mod size q) desc_head;
    Return (q <| avail := (avail q) <| VirtqAvail.ring := ring |>
                                    <| VirtqAvail.idx := (idx + 1) mod (u16_max + 1) |> |>).
(* hal_x86_64/src/virtio.rs:250-253 Virtqueue::has_used *)
Definition has_used (q : t) : bool := negb (last_used_idx q =? VirtqUsed.idx (used q)).
(* hal_x86_64/src/virtio.rs:255-266 Virtqueue::get_used *)
Definition get_used (q : t) : outcome (option (N * N) * t) :=
  if negb (has_used q) then Return (None, q)
  else if size q =? 0 then Panic
  else
    let idx := last_used_idx q in
    elem ← slice_get (VirtqUsed.ring (used q)) (idx mod size q);
    Return (Some (VirtqUsedElem.id elem, VirtqUsedElem.len elem),
            q <| last_used_idx := (idx + 1) mod (u16_max + 1) |>).
End Virtqueue.

(** ** The device *)

(** The memory the driver shares with the device. *)
Module Shared.
Record t := mk {
  desc : list VirtqDesc.t;
  avail : VirtqAvail.t;
  used : VirtqUsed.t;
  header : list N;
  buffer : list N;
  status : N
}.
End Shared.

Class VirtioBus (M : Type) := {
  bus_read : N → M → N * M;
  bus_write : N → N → M → M;
  bus_run : Shared.t → M → Shared.t * M
}.

Module VirtioMmioDevice.
(* hal_x86_64/src/virtio.rs:269-272 VirtioMmioDevice *)
Record t := mk { base_addr : N }.
Section with_bus.
Context {M : Type} `{VirtioBus M}.
(* hal_x86_64/src/virtio.rs:296-299 VirtioMmioDevice::read_reg *)
Definition read_reg (d : t) (offset : N) (m : M) : outcome (N * M) :=
  a ← add_u64 (base_addr d) offset; Return (bus_read a m).
(* hal_x86_64/src/virtio.rs:301-304 VirtioMmioDevice::write_reg *)
Definition write_reg (d : t) (offset value : N) (m : M) : outcome M :=
  a ← add_u64 (base_addr d) offset; Return (bus_write a value m).
Definition get (d : t) (r : MmioRegister) : M → outcome (N * M) := read_reg d (register_offset r).
Definition put (d : t) (r : MmioRegister) (v : N) : M → outcome M := write_reg d (register_offset r) v.
(* hal_x86_64/src/virtio.rs:275-294 VirtioMmioDevice::new *)
Definition new (base_addr : N) (m : M) : outcome (option t * M) :=
  let device := mk base_addr in
  '(magic, m) ← get device MagicValue m;
  if negb (magic =? VIRTIO_MMIO_MAGIC) then Return (None, m)
  else
    '(version, m) ← get device Version m;
    if version <? 2 then Return (None, m) else Return (Some device, m).
(* hal_x86_64/src/virtio.rs:306-309 VirtioMmioDevice::device_id *)
Definition device_id (d : t) : M → outcome (N * M) := get d DeviceId.
(* hal_x86_64/src/virtio.rs:311-314 VirtioMmioDevice::vendor_id *)
Definition vendor_id (d : t) : M → outcome (N * M) := get d VendorId.
(* hal_x86_64/src/virtio.rs:316-322 VirtioMmioDevice::device_features *)
Definition device_features (d : t) (select : N) (m : M) : outcome (N * M) :=
  m ← put d DeviceFeaturesSel select m; get d DeviceFeatures m.
(* hal_x86_64/src/virtio.rs:324-330 VirtioMmioDevice::set_driver_features *)
Definition set_driver_features (d : t) (select features : N) (m : M) : outcome M :=
  m ← put d DriverFeaturesSel select m; put d DriverFeatures features m.
(* hal_x86_64/src/virtio.rs:332-335 VirtioMmioDevice::status *)
Definition status (d : t) : M → outcome (N * M) := get d Status.
(* hal_x86_64/src/virtio.rs:337-340 VirtioMmioDevice::set_status *)
Definition set_status (d : t) (v : N) : M → outcome M := put d Status v.
(* hal_x86_64/src/virtio.rs:342-346 VirtioMmioDevice::add_status *)
Definition add_status (d : t) (v : N) (m : M) : outcome M :=
  '(current, m) ← status d m; set_status d (N.lor current v) m.
(* hal_x86_64/src/virtio.rs:348-351 VirtioMmioDevice::select_queue *)
Definition select_queue (d : t) (index : N) : M → outcome M := put d QueueSel index.
(* hal_x86_64/src/virtio.rs:353-356 VirtioMmioDevice::queue_max_size *)
Definition queue_max_size (d : t) : M → outcome (N * M) := get d QueueNumMax.
(* hal_x86_64/src/virtio.rs:358-361 VirtioMmioDevice::set_queue_size *)
Definition set_queue_size (d : t) (size : N) : M → outcome M := put d QueueNum size.
(* hal_x86_64/src/virtio.rs:363-366 VirtioMmioDevice::set_queue_ready *)
Definition set_queue_ready (d : t) (ready : bool) : M → outcome M := put d QueueReady (if ready then 1 else 0).
(** [addr as u32] and [(addr >> 32) as u32]. *)
Definition put_address (d : t) (low high : MmioRegister) (a : N) (m : M) : outcome M :=
  m ← put d low (a mod 2 ^ 32) m; put d high (N.shiftr a 32 mod 2 ^ 32) m.
(* hal_x86_64/src/virtio.rs:368-374 VirtioMmioDevice::set_queue_desc *)
Definition set_queue_desc (d : t) : N → M → outcome M := put_address d QueueDescLow QueueDescHigh.
(* hal_x86_64/src/virtio.rs:376-382 VirtioMmioDevice::set_queue_avail *)
Definition set_queue_avail (d : t) : N → M → outcome M := put_address d QueueAvailLow QueueAvailHigh.
(* hal_x86_64/src/virtio.rs:384-390 VirtioMmioDevice::set_queue_used *)
Definition set_queue_used (d : t) : N → M → outcome M := put_address d QueueUsedLow QueueUsedHigh.
(* hal_x86_64/src/virtio.rs:392-395 VirtioMmioDevice::notify_queue *)
Definition notify_queue (d : t) (queue_index : N) : M → outcome M := put d QueueNotify queue_index.
(* hal_x86_64/src/virtio.rs:397-400 VirtioMmioDevice::interrupt_status *)
Definition interrupt_status (d : t) : M → outcome (N * M) := get d InterruptStatus.
(* hal_x86_64/src/virtio.rs:402-405 VirtioMmioDevice::interrupt_ack *)
Definition interrupt_ack (d : t) (s : N) : M → outcome M := put d InterruptAck s.
(* hal_x86_64/src/virtio.rs:407-410 VirtioMmioDevice::read_config_u32 *)
Definition read_config_u32 (d : t) (offset : N) : M → outcome (N * M) :=
  read_reg d (register_offset Config + offset).
(* hal_x86_64/src/virtio.rs:412-419 VirtioMmioDevice::read_config_u64 *)
Definition read_config_u64 (d : t) (offset : N) (m : M) : outcome (N * M) :=
  '(low, m) ← read_reg d (register_offset Config + offset) m;
  '(high, m) ← read_reg d (register_offset Config + offset + 4) m;
  Return (N.lor low (N.shiftl high 32), m).
End with_bus.
End VirtioMmioDevice.

(** ** The block driver ([hal_x86_64/src/virtio_blk.rs]) *)

Module VirtioBlkDevice.
(* hal_x86_64/src/virtio_blk.rs:21-22 VIRTIO_BLK_T_IN *)
Definition VIRTIO_BLK_T_IN : N := 0.
(* hal_x86_64/src/virtio_blk.rs:23-23 VIRTIO_BLK_T_OUT *)
Definition VIRTIO_BLK_T_OUT : N := 1.
(* hal_x86_64/src/virtio_blk.rs:24-24 VIRTIO_BLK_T_FLUSH *)
Definition VIRTIO_BLK_T_FLUSH : N := 4.
(* hal_x86_64/src/virtio_blk.rs:26-27 VIRTIO_BLK_S_OK *)
Definition VIRTIO_BLK_S_OK : N := 0.
(* hal_x86_64/src/virtio_blk.rs:31-32 SECTOR_SIZE *)
Definition SECTOR_SIZE : N := 512.
(* hal_x86_64/src/virtio_blk.rs:34-35 SECTORS_PER_BLOCK *)
Definition SECTORS_PER_BLOCK : N := BLOCK_SIZE / SECTOR_SIZE.
(* hal_x86_64/src/virtio_blk.rs:37-38 MAX_POLL_ITERATIONS *)
Definition MAX_POLL_ITERATIONS : N := 1000000.
(* hal_x86_64/src/virtio_blk.rs:49-58 VirtioBlkDevice *)
Record t := mk {
  device : VirtioMmioDevice.t;
  queue : Virtqueue.t;
  capacity_sectors : N;
  req_header : list N;
  status_byte : N
}.
#[global] Instance rebuild_t : Rebuild t := λ b,
  mk (device b) (queue b) (capacity_sectors b) (req_header b) (status_byte b).

(** Where the values that the device reads and writes are in memory. *)
Module Addrs.
Record t := mk { header : N; status : N; buffer : N }.
End Addrs.

Section with_bus.
Context {M : Type} `{VirtioBus M}.

(** The queue memory, with the addresses it has. *)
Record queue_memory := mk_memory {
  m_desc : list VirtqDesc.t; m_avail : VirtqAvail.t; m_used : VirtqUsed.t;
  desc_addr : N; avail_addr : N; used_addr : N
}.
(* hal_x86_64/src/virtio_blk.rs:86-98 VirtioBlkDevice::new *)
Definition negotiate (d : VirtioMmioDevice.t) (m : M) : outcome (bool * M) :=
  m ← VirtioMmioDevice.set_status d 0 m;
  m ← VirtioMmioDevice.add_status d VIRTIO_STATUS_ACKNOWLEDGE m;
  m ← VirtioMmioDevice.add_status d VIRTIO_STATUS_DRIVER m;
  m ← VirtioMmioDevice.set_driver_features d 0 0 m;
  m ← VirtioMmioDevice.add_status d VIRTIO_STATUS_FEATURES_OK m;
  '(s, m) ← VirtioMmioDevice.status d m;
  Return (negb (N.land s VIRTIO_STATUS_FEATURES_OK =? 0), m).
(* hal_x86_64/src/virtio_blk.rs:60-130 VirtioBlkDevice::new *)
Definition new (base_addr : N) (mem : queue_memory) (m : M) : outcome (result t BlockError.t * M) :=
  '(device, m) ← VirtioMmioDevice.new base_addr m;
  match device with
  | None => Return (Err BlockError.NotReady, m)
  | Some d =>
      '(id, m) ← VirtioMmioDevice.device_id d m;
      if negb (id =? VIRTIO_DEVICE_ID_BLOCK) then Return (Err BlockError.NotReady, m)
      else
        '(ok, m) ← negotiate d m;
        if negb ok then Return (Err BlockError.NotReady, m)
        else
          m ← VirtioMmioDevice.select_queue d 0 m;
          '(max, m) ← VirtioMmioDevice.queue_max_size d m;
          let queue_size := N.min max VIRTQ_MAX_SIZE in
          m ← VirtioMmioDevice.set_queue_size d queue_size m;
          let queue := Virtqueue.new queue_size (m_desc mem) (m_avail mem) (m_used mem) in
          m ← VirtioMmioDevice.set_queue_desc d (desc_addr mem) m;
          m ← VirtioMmioDevice.set_queue_avail d (avail_addr mem) m;
          m ← VirtioMmioDevice.set_queue_used d (used_addr mem) m;
          m ← VirtioMmioDevice.set_queue_ready d true m;
          m ← VirtioMmioDevice.add_status d VIRTIO_STATUS_DRIVER_OK m;
          '(capacity, m) ← VirtioMmioDevice.read_config_u64 d 0 m;
          Return (Ok (mk d queue capacity (replicate 16 0) 0), m)
  end.

(** The bytes of [VirtioBlkReqHeader]. *)
(* hal_x86_64/src/virtio_blk.rs:40-47 VirtioBlkReqHeader *)
Definition header_bytes (req_type sector : N) : list N := to_le 4 req_type ++ to_le 4 0 ++ to_le 8 sector.

(** The device looks at the memory and may change it. *)
Definition shared (buffer : list N) (b : t) : Shared.t :=
  let q := queue b in
  Shared.mk (Virtqueue.desc q) (Virtqueue.avail q) (Virtqueue.used q) (req_header b) buffer (status_byte b).
Definition with_shared (s : Shared.t) (b : t) : t :=
  mk (device b)
     (Virtqueue.mk (Virtqueue.size (queue b)) (Shared.desc s) (Shared.avail s) (Shared.used s)
        (Virtqueue.last_used_idx (queue b)) (Virtqueue.free_head (queue b)) (Virtqueue.num_free (queue b)))
     (capacity_sectors b) (Shared.header s) (Shared.status s).
Definition device_acts (buffer : list N) (b : t) (m : M) : list N * t * M :=
  let '(s, m) := bus_run (shared buffer b) m in (Shared.buffer s, with_shared s b, m).

(** The polling loop: whether a used element came. *)
(* hal_x86_64/src/virtio_blk.rs:189-197 VirtioBlkDevice::do_io *)
Fixpoint wait_used (iterations : nat) (buffer : list N) (b : t) (m : M) : bool * (list N * t * M) :=
  let '(buffer, b, m) := device_acts buffer b m in
  if Virtqueue.has_used (queue b) then (true, (buffer, b, m))
  else match iterations with
       | O => (false, (buffer, b, m))
       | S iterations => wait_used iterations buffer b m
       end.
(** From the notification to the result; common to requests with and without data. *)
(* hal_x86_64/src/virtio_blk.rs:185-214 VirtioBlkDevice::do_io *)
Definition complete (desc_head : N) (buffer : list N) (b : t) (m : M)
    : outcome (result unit BlockError.t * (list N * t * M)) :=
  q ← Virtqueue.add_to_avail desc_head (queue b);
  let b := b <| queue := q |> in
  m ← VirtioMmioDevice.notify_queue (device b) 0 m;
  let '(answered, (buffer, b, m)) := wait_used (N.to_nat MAX_POLL_ITERATIONS) buffer b m in
  if negb answered then Return (Err BlockError.IoError, (buffer, b, m))
  else
    '(used, q) ← Virtqueue.get_used (queue b);
    let b := b <| queue := q |> in
    match used with
    | None => Return (Err BlockError.IoError, (buffer, b, m))
    | Some (used_id, _) =>
        if negb (used_id =? desc_head) then Return (Err BlockError.IoError, (buffer, b, m))
        else
          q ← Virtqueue.free_desc desc_head (queue b);
          let b := b <| queue := q |> in
          Return (if status_byte b =? VIRTIO_BLK_S_OK then Ok tt else Err BlockError.IoError, (buffer, b, m))
    end.
(** [a + b] of [u16]s. *)
Definition add_u16 (a b : N) : outcome N := if a + b <=? u16_max then Return (a + b) else Panic.
Definition set_desc (i : N) (d : VirtqDesc.t) (q : Virtqueue.t) : outcome Virtqueue.t :=
  ds ← slice_set (Virtqueue.desc q) i d; Return (q <| Virtqueue.desc := ds |>).
(** The three descriptors of a request with data. *)
(* hal_x86_64/src/virtio_blk.rs:141-183 VirtioBlkDevice::do_io *)
Definition prepare_io (a : Addrs.t) (req_type sector buffer_len : N) (is_write : bool) (b : t)
    : outcome (option N * t) :=
  '(head, q) ← Virtqueue.alloc_desc 3 (queue b);
  let b := b <| queue := q |> in
  match head with
  | None => Return (None, b)
  | Some desc_head =>
      let b := b <| req_header := header_bytes req_type sector |> in
      desc_data ← add_u16 desc_head 1;
      desc_status ← add_u16 desc_head 2;
      q ← set_desc desc_head (VirtqDesc.mk (Addrs.header a) 16 VIRTQ_DESC_F_NEXT desc_data) (queue b);
      q ← set_desc desc_data
            (VirtqDesc.mk (Addrs.buffer a) (buffer_len mod 2 ^ 32)
               (N.lor VIRTQ_DESC_F_NEXT (if is_write then 0 else VIRTQ_DESC_F_WRITE)) desc_status) q;
      q ← set_desc desc_status (VirtqDesc.mk (Addrs.status a) 1 VIRTQ_DESC_F_WRITE 0) q;
      Return (Some desc_head, b <| queue := q |>)
  end.
(* hal_x86_64/src/virtio_blk.rs:132-215 VirtioBlkDevice::do_io *)
Definition do_io (a : Addrs.t) (req_type sector : N) (buffer : list N) (buffer_len : N) (is_write : bool)
    (b : t) (m : M) : outcome (result unit BlockError.t * (list N * t * M)) :=
  '(head, b) ← prepare_io a req_type sector buffer_len is_write b;
  match head with
  | None => Return (Err BlockError.IoError, (buffer, b, m))
  | Some desc_head => complete desc_head buffer b m
  end.
(* hal_x86_64/src/virtio_blk.rs:219-221 VirtioBlkDevice::block_count *)
Definition block_count (b : t) : N := capacity_sectors b / SECTORS_PER_BLOCK.
(* hal_x86_64/src/virtio_blk.rs:223-233 VirtioBlkDevice::read_block *)
Definition read_block (a : Addrs.t) (block_idx : N) (buffer : list N) (b : t) (m : M)
    : outcome (result unit BlockError.t * (list N * t * M)) :=
  if block_count b <=? block_idx then Return (Err BlockError.OutOfBounds, (buffer, b, m))
  else if len buffer <? BLOCK_SIZE then Return (Err BlockError.InvalidSize, (buffer, b, m))
  else
    sector ← mul_u64 block_idx SECTORS_PER_BLOCK;
    do_io a VIRTIO_BLK_T_IN sector buffer BLOCK_SIZE false b m.
(* hal_x86_64/src/virtio_blk.rs:235-250 VirtioBlkDevice::write_block *)
Definition write_block (a : Addrs.t) (block_idx : N) (buffer : list N) (b : t) (m : M)
    : outcome (result unit BlockError.t * (list N * t * M)) :=
  if block_count b <=? block_idx then Return (Err BlockError.OutOfBounds, (buffer, b, m))
  else if len buffer <? BLOCK_SIZE then Return (Err BlockError.InvalidSize, (buffer, b, m))
  else
    sector ← mul_u64 block_idx SECTORS_PER_BLOCK;
    do_io a VIRTIO_BLK_T_OUT sector buffer BLOCK_SIZE true b m.
(* hal_x86_64/src/virtio_blk.rs:252-314 VirtioBlkDevice::flush *)
Definition flush (a : Addrs.t) (b : t) (m : M) : outcome (result unit BlockError.t * (list N * t * M)) :=
  '(head, q) ← Virtqueue.alloc_desc 2 (queue b);
  let b := b <| queue := q |> in
  match head with
  | None => Return (Err BlockError.IoError, ([], b, m))
  | Some desc_head =>
      let b := b <| req_header := header_bytes VIRTIO_BLK_T_FLUSH 0 |> in
      desc_status ← add_u16 desc_head 1;
      q ← set_desc desc_head (VirtqDesc.mk (Addrs.header a) 16 VIRTQ_DESC_F_NEXT desc_status) (queue b);
      q ← set_desc desc_status (VirtqDesc.mk (Addrs.status a) 1 VIRTQ_DESC_F_WRITE 0) q;
      complete desc_head [] (b <| queue := q |>) m
  end.
End with_bus.
End VirtioBlkDevice.

(** * Properties of the virtio block driver

    The free descriptors form a list that allocation shortens and freeing restores; a request
    reaches the device as it was meant; with a device that keeps to its part of the memory the
    driver never panics and answers every call. *)

Open Scope string_scope.
Open Scope list_scope.
Open Scope N_scope.

Module VirtioSpec.
Import Virtqueue.

(** ** The free list *)

(** [l] are the descriptors that the links lead through from [h]. *)
Fixpoint chained (ds : list VirtqDesc.t) (h : N) (l : list N) : Prop :=
  match l with
  | [] => True
  | i :: l => h = i ∧ ∃ d, ds !! N.to_nat i = Some d ∧ chained ds (VirtqDesc.next d) l
  end.
(** A chain in use: every descriptor but the last says that there is a next one. *)
Fixpoint in_use (ds : list VirtqDesc.t) (i : N) (l : list N) : Prop :=
  ∃ d, ds !! N.to_nat i = Some d ∧
  match l with
  | [] => has_next d = false
  | j :: l => has_next d = true ∧ VirtqDesc.next d = j ∧ in_use ds j l
  end.

Record queue_ok (q : t) (l : list N) : Prop := {
  ok_chain : chained (desc q) (free_head q) l;
  ok_nodup : NoDup l;
  ok_free : num_free q = len l;
  ok_desc : length (desc q) = N.to_nat (size q);
  ok_size : 0 < size q ∧ size q ≤ VIRTQ_MAX_SIZE;
  ok_avail : length (VirtqAvail.ring (avail q)) = N.to_nat VIRTQ_MAX_SIZE;
  ok_idx : VirtqAvail.idx (avail q) ≤ u16_max;
  ok_used : length (VirtqUsed.ring (used q)) = N.to_nat VIRTQ_MAX_SIZE
}.

Lemma follow_spec n ds h l :
  chained ds h l → (n ≤ length l)%nat → ∃ h', follow n ds h = Return h' ∧ chained ds h' (drop n l).
Proof.
  revert h l. induction n as [|n IH]; intros h l Hc Hn; [by exists h|].
  destruct l as [|i l]; simpl in *; [lia|]. destruct Hc as (-> & d & Hd & Hc).
  unfold slice_get. rewrite Hd. simpl. apply IH; [done|lia].
Qed.

(** Changes outside the list do not matter. *)
Lemma chained_insert ds h l i x :
  i ∉ l → chained ds h l → chained (<[N.to_nat i := x]> ds) h l.
Proof.
  revert h. induction l as [|j l IH]; intros h Hi; simpl; [done|].
  apply not_elem_of_cons in Hi as [Hne Hi]. intros (-> & d & Hd & Hc). split; [done|]. exists d.
  rewrite list_lookup_insert_ne by lia. eauto.
Qed.

Lemma alloc_spec q l count i r :
  queue_ok q l → l = i :: r → 0 < count → count ≤ len l →
  ∃ q', alloc_desc count q = Return (Some i, q') ∧ queue_ok q' (drop (N.to_nat count) l)
    ∧ desc q' = desc q ∧ size q' = size q ∧ avail q' = avail q ∧ used q' = used q
    ∧ last_used_idx q' = last_used_idx q.
Proof.
  intros Hq -> Hpos Hc. pose proof Hq as [Hch Hnd Hfree Hd Hs Ha Hidx Hu]. unfold alloc_desc.
  rewrite Hfree, (proj2 (N.ltb_ge _ _)) by done.
  destruct (follow_spec (N.to_nat count) (desc q) (free_head q) (i :: r) Hch) as (h' & -> & Hch').
  { unfold len in Hc. lia. }
  simpl. destruct Hch as [-> _]. eexists. split; [done|]. split_and!; try done.
  split; try done; simpl.
  - eapply sublist_NoDup; [exact Hnd|apply sublist_drop].
  - rewrite Hfree. unfold len in *. rewrite length_drop. lia.
Qed.

Lemma free_loop_spec fuel head i l q f :
  in_use (desc q) i l → chained (desc q) (free_head q) f → i ∉ f → NoDup (i :: l) →
  (∀ j, j ∈ l → j ∉ f) → (length l < fuel)%nat → num_free q + len (i :: l) ≤ u16_max →
  ∃ q', free_loop fuel head i q = Return q' ∧ free_head q' = head ∧ num_free q' = num_free q + len (i :: l)
    ∧ length (desc q') = length (desc q) ∧ size q' = size q ∧ avail q' = avail q ∧ used q' = used q
    ∧ last_used_idx q' = last_used_idx q
    ∧ chained (desc q') i ((i :: l) ++ f)
    ∧ (∀ k, k ∉ i :: l → desc q' !! N.to_nat k = desc q !! N.to_nat k).
Proof.
  revert i l q. induction fuel as [|fuel IH]; intros i l q Huse Hf Hif Hnd Hlf Hfuel Hmax; [lia|].
  destruct l as [|j l]; simpl in Huse; destruct Huse as (d & Hd & Hn); cbn [free_loop]; unfold slice_get;
    rewrite Hd; cbn [expect mbind outcome_bind]; unfold len in Hmax; cbn [length] in Hmax;
    rewrite (proj2 (N.ltb_lt _ _)) by lia.
  - rewrite Hn. apply lookup_lt_Some in Hd as Hlt. unfold slice_set. simpl.
    rewrite decide_True by done. simpl. eexists. split; [done|]. simpl. split_and!; try done.
    + rewrite length_insert. done.
    + eexists. rewrite list_lookup_insert_eq by done. split; [done|]. simpl.
      by apply chained_insert.
    + intros k Hk%not_elem_of_cons. rewrite list_lookup_insert_ne by lia. done.
  - destruct Hn as (Hn & Hj & Huse). rewrite Hn, Hj.
    destruct (IH j l (q <| num_free ::= λ n, n + 1 |>)) as
      (q' & -> & H1 & H2 & H3 & H4 & H5 & H6 & H7 & H9 & H10).
    + exact Huse.
    + exact Hf.
    + apply Hlf. left.
    + by inversion Hnd.
    + intros k Hk. apply Hlf. by right.
    + simpl in Hfuel. lia.
    + simpl. unfold len. simpl. lia.
    + exists q'. simpl in *. split_and!; try done.
      * rewrite H2. unfold len. simpl. lia.
      * exists d. rewrite Hj. split; [|done]. inversion_clear Hnd as [|? ? Hni Hnd'].
        rewrite H10 by done. done.
      * intros k [Hk1 Hk2]%not_elem_of_cons. by apply H10.
Qed.

(** Freeing a chain puts it in front of the free list. *)
Lemma free_spec q i l f :
  queue_ok q f → in_use (desc q) i l → NoDup ((i :: l) ++ f) → num_free q + len (i :: l) ≤ u16_max →
  ∃ q', free_desc i q = Return q' ∧ queue_ok q' ((i :: l) ++ f) ∧ size q' = size q
    ∧ last_used_idx q' = last_used_idx q.
Proof.
  intros [Hch Hnd Hfree Hd Hs Ha Hidx Hu] Huse Hall Hmax. unfold free_desc.
  apply NoDup_app in Hall as Hall'. destruct Hall' as (Hn1 & Hdis & Hn2).
  destruct (free_loop_spec (N.to_nat (u16_max + 1)) i i l q f) as
    (q' & -> & H1 & H2 & H3 & H4 & H5 & H6 & H7 & H9 & H10); try done.
  - apply Hdis. left.
  - intros j Hj. apply Hdis. by right.
  - unfold len, u16_max in *. cbn [length] in Hmax. lia.
  - exists q'. split; [done|]. split; [|done]. split; try done.
    + by rewrite H1.
    + rewrite H2, Hfree. unfold len. rewrite length_app. lia.
    + by rewrite H3, Hd, H4.
    + by rewrite H4.
    + by rewrite H5.
    + by rewrite H5.
    + by rewrite H6.
Qed.

(** [n] consecutive numbers from [h]. *)
Fixpoint run_of (h : N) (n : nat) : list N :=
  match n with O => [] | S n => h :: run_of (h + 1) n end.
Lemma length_run_of h n : length (run_of h n) = n.
Proof. revert h. induction n as [|n IH]; intros h; simpl; [done|]. by rewrite IH. Qed.
Lemma elem_of_run_of h n i : i ∈ run_of h n ↔ h ≤ i ∧ i < h + N.of_nat n.
Proof.
  revert h. induction n as [|n IH]; intros h; cbn [run_of].
  - rewrite elem_of_nil. lia.
  - rewrite elem_of_cons, IH. lia.
Qed.
Lemma NoDup_run_of h n : NoDup (run_of h n).
Proof.
  revert h. induction n as [|n IH]; intros h; cbn [run_of]; constructor; [|done].
  rewrite elem_of_run_of. lia.
Qed.

(** ** Requests *)

Import VirtioBlkDevice.

(** The driver takes it that the next free descriptors are consecutive. *)
Definition ready (b : VirtioBlkDevice.t) (h : N) (rest : list N) : Prop :=
  queue_ok (queue b) (h :: h + 1 :: h + 2 :: rest).

Lemma set_desc_spec i d q :
  i < size q → length (desc q) = N.to_nat (size q) →
  set_desc i d q = Return (q <| desc := <[N.to_nat i := d]> (desc q) |>).
Proof. intros Hi Hl. unfold set_desc, slice_set. rewrite decide_True by (rewrite Hl; lia). done. Qed.

Lemma chained_lt ds h l i : chained ds h l → i ∈ l → (N.to_nat i < length ds)%nat.
Proof.
  revert h. induction l as [|j l IH]; intros h; simpl; [by intros _ ?%not_elem_of_nil|].
  intros (-> & d & Hd & Hc) [->|Hi]%elem_of_cons; [by eapply lookup_lt_Some|by eapply IH].
Qed.

Lemma chained_length ds h l : chained ds h l → NoDup l → (length l ≤ length ds)%nat.
Proof.
  intros Hc Hnd. transitivity (length (N.to_nat <$> l)); [by rewrite length_fmap|].
  rewrite <-(length_seq (length ds) 0). apply submseteq_length, NoDup_submseteq.
  - by apply NoDup_fmap; [apply _|].
  - intros k (i & -> & Hi)%list_elem_of_fmap. apply elem_of_seq. pose proof (chained_lt _ _ _ _ Hc Hi). lia.
Qed.

(** The memory the device sees: the driver's header array, the caller's buffer and the status
    byte, each at its address; other addresses are not its business. *)
Definition in_array (addr : N) (bytes : list N) (x : N) : option N :=
  if addr <=? x then bytes !! N.to_nat (x - addr) else None.
Definition memory (a : Addrs.t) (b : VirtioBlkDevice.t) (buffer : list N) (x : N) : option N :=
  match in_array (Addrs.header a) (req_header b) x with
  | Some v => Some v
  | None => match in_array (Addrs.buffer a) buffer x with
            | Some v => Some v
            | None => in_array (Addrs.status a) [status_byte b] x
            end
  end.
Definition read_bytes (mem : N → option N) (addr n : N) : option (list N) :=
  mapM (λ i, mem (addr + N.of_nat i)) (seq 0 (N.to_nat n)).

(** What a device finds when it follows the entry that was last made available, as the
    VirtIO specification lays a block request out: a header of 16 bytes that it may only read,
    the data, and one status byte that it may write.  It reads the header, and the data of
    a request that is not for it to fill, from the memory the descriptors point to. *)
Record request := mk_request {
  rq_type : N; rq_sector : N; rq_addr : N; rq_len : N;
  rq_data : option (list N);  (* what the device is to store; [None] when it fills the buffer *)
  rq_status : N
}.
Definition device_writable (d : VirtqDesc.t) : bool :=
  negb (N.land (VirtqDesc.flags d) VIRTQ_DESC_F_WRITE =? 0).
Definition device_reads (mem : N → option N) (q : Virtqueue.t) : option request :=
  let slot := ((VirtqAvail.idx (avail q) + u16_max) mod (u16_max + 1)) mod size q in
  head ← VirtqAvail.ring (avail q) !! N.to_nat slot;
  d0 ← desc q !! N.to_nat head;
  d1 ← desc q !! N.to_nat (VirtqDesc.next d0);
  d2 ← desc q !! N.to_nat (VirtqDesc.next d1);
  if has_next d0 && has_next d1 && negb (has_next d2)
     && (VirtqDesc.len d0 =? 16) && negb (device_writable d0)
     && (VirtqDesc.len d2 =? 1) && device_writable d2 then
    header ← read_bytes mem (VirtqDesc.addr d0) (VirtqDesc.len d0);
    data ← (if device_writable d1 then Some None
            else Some <$> read_bytes mem (VirtqDesc.addr d1) (VirtqDesc.len d1));
    Some (mk_request (from_le (take 4 header)) (from_le (take 8 (drop 8 header)))
            (VirtqDesc.addr d1) (VirtqDesc.len d1) data (VirtqDesc.addr d2))
  else None.

Lemma read_array mem addr bytes n :
  (∀ i x, bytes !! i = Some x → mem (addr + N.of_nat i) = Some x) → n ≤ len bytes →
  read_bytes mem addr n = Some (take (N.to_nat n) bytes).
Proof.
  intros Hm Hn. unfold len in Hn. apply mapM_Some_2, Forall2_same_length_lookup_2.
  { rewrite length_seq, length_take. lia. }
  intros i j x [-> Hi]%lookup_seq Hx. apply Hm. rewrite lookup_take_Some in Hx. apply Hx.
Qed.
Lemma in_array_at addr bytes i : in_array addr bytes (addr + N.of_nat i) = bytes !! i.
Proof.
  unfold in_array. rewrite (proj2 (N.leb_le _ _)) by lia. f_equal. lia.
Qed.
Lemma read_header a b buffer :
  length (req_header b) = 16%nat →
  read_bytes (memory a b buffer) (Addrs.header a) 16 = Some (req_header b).
Proof.
  intros Hl. rewrite (read_array _ _ (req_header b)).
  - by rewrite take_ge by (rewrite Hl; done).
  - intros i x Hx. unfold memory. by rewrite in_array_at, Hx.
  - unfold len. by rewrite Hl.
Qed.
(** The driver's header and the caller's buffer are different objects. *)
Definition apart (a : Addrs.t) (buffer : list N) : Prop :=
  Addrs.header a + 16 ≤ Addrs.buffer a ∨ Addrs.buffer a + len buffer ≤ Addrs.header a.
Lemma read_buffer a b buffer n :
  length (req_header b) = 16%nat → apart a buffer → n ≤ len buffer →
  read_bytes (memory a b buffer) (Addrs.buffer a) n = Some (take (N.to_nat n) buffer).
Proof.
  intros Hl Hapart Hn. apply read_array; [|done]. intros i x Hx. unfold memory.
  apply lookup_lt_Some in Hx as Hi.
  assert (in_array (Addrs.header a) (req_header b) (Addrs.buffer a + N.of_nat i) = None) as ->.
  { unfold in_array. destruct (N.leb_spec (Addrs.header a) (Addrs.buffer a + N.of_nat i)); [|done].
    apply lookup_ge_None_2. unfold apart, len in Hapart. lia. }
  by rewrite in_array_at, Hx.
Qed.

Lemma queue_ok_desc q q' l ds :
  queue_ok q l → q' = q <| desc := ds |> → chained ds (free_head q) l → length ds = length (desc q) →
  queue_ok q' l.
Proof. intros [Hch Hnd Hfree Hd Hs Ha Hidx Hu] -> Hc Hl. split; simpl; rewrite ?Hl; done. Qed.

Section with_bus.
Context {M : Type} `{VirtioBus M}.

(** The request is written into the three descriptors, which leave the free list. *)
Lemma prepare_spec a ty sec n w b h rest :
  ready b h rest →
  ∃ b', prepare_io a ty sec n w b = Return (Some h, b') ∧ queue_ok (queue b') rest
    ∧ desc (queue b') !! N.to_nat h = Some (VirtqDesc.mk (Addrs.header a) 16 VIRTQ_DESC_F_NEXT (h + 1))
    ∧ desc (queue b') !! N.to_nat (h + 1) = Some (VirtqDesc.mk (Addrs.buffer a) (n mod 2 ^ 32)
        (N.lor VIRTQ_DESC_F_NEXT (if w then 0 else VIRTQ_DESC_F_WRITE)) (h + 2))
    ∧ desc (queue b') !! N.to_nat (h + 2) = Some (VirtqDesc.mk (Addrs.status a) 1 VIRTQ_DESC_F_WRITE 0)
    ∧ NoDup ([h; h + 1; h + 2] ++ rest)
    ∧ req_header b' = header_bytes ty sec ∧ device b' = device b ∧ size (queue b') = size (queue b)
    ∧ capacity_sectors b' = capacity_sectors b ∧ used (queue b') = used (queue b)
    ∧ last_used_idx (queue b') = last_used_idx (queue b).
Proof.
  intros Hq. pose proof Hq as Hq0.
  destruct (alloc_spec (queue b) _ 3 h _ Hq eq_refl) as (q1 & E & Hq1 & Hd1 & Hs1 & _ & Hu1 & Hl1);
    [done|unfold len; simpl; lia|].
  change (drop (N.to_nat 3) (h :: h + 1 :: h + 2 :: rest)) with rest in Hq1.
  pose proof (ok_nodup _ _ Hq0) as Hnd.
  assert (h + 2 < size (queue b)) as Hlt.
  { pose proof (chained_lt _ _ _ (h + 2) (ok_chain _ _ Hq0)) as Hl. rewrite (ok_desc _ _ Hq0) in Hl.
    cut (N.to_nat (h + 2) < N.to_nat (size (queue b)))%nat; [lia|]. apply Hl. right. right. left. }
  pose proof (ok_size _ _ Hq0) as [_ Hsz]. unfold VIRTQ_MAX_SIZE in Hsz.
  assert (h ∉ rest ∧ h + 1 ∉ rest ∧ h + 2 ∉ rest) as (Hn0 & Hn1 & Hn2).
  { inversion_clear Hnd as [|? ? A1 B1]. inversion_clear B1 as [|? ? A2 B2]. inversion_clear B2 as [|? ? A3 B3].
    split_and!; [|by intros ?; apply A2; right|done]. intros ?. apply A1. right. by right. }
  unfold prepare_io. rewrite E. cbn [mbind outcome_bind]. unfold add_u16, u16_max.
  rewrite !(proj2 (N.leb_le _ _)) by lia. cbn [mbind outcome_bind].
  pose proof (ok_desc _ _ Hq1) as Hlen1. rewrite <-Hs1 in Hlt.
  rewrite set_desc_spec by (simpl; (done || lia)). cbn [mbind outcome_bind].
  rewrite set_desc_spec by (simpl; rewrite ?length_insert; (done || lia)). cbn [mbind outcome_bind].
  rewrite set_desc_spec by (simpl; rewrite ?length_insert; (done || lia)). cbn [mbind outcome_bind].
  eexists. split; [done|]. simpl. rewrite <-Hs1.
  split_and!; try done.
  - eapply (queue_ok_desc q1); [done|reflexivity| |by rewrite !length_insert].
    do 3 (apply chained_insert; [done|]). apply (ok_chain _ _ Hq1).
  - rewrite !list_lookup_insert_ne by lia. apply list_lookup_insert_eq. lia.
  - rewrite list_lookup_insert_ne by lia. apply list_lookup_insert_eq. rewrite length_insert. lia.
  - apply list_lookup_insert_eq. rewrite !length_insert. lia.
Qed.

Lemma make_available h q l :
  queue_ok q l →
  ∃ q', add_to_avail h q = Return q' ∧ queue_ok q' l ∧ desc q' = desc q ∧ size q' = size q
    ∧ last_used_idx q' = last_used_idx q ∧ used q' = used q
    ∧ VirtqAvail.ring (avail q') !! N.to_nat (((VirtqAvail.idx (avail q') + u16_max) mod (u16_max + 1)) mod size q)
      = Some h.
Proof.
  intros [Hch Hnd Hfree Hd Hs Ha Hidx Hu]. unfold add_to_avail.
  rewrite (proj2 (N.eqb_neq _ _)) by lia. unfold slice_set.
  pose proof (N.mod_upper_bound (VirtqAvail.idx (avail q)) (size q) ltac:(lia)) as Hm.
  rewrite decide_True by (rewrite Ha; unfold VIRTQ_MAX_SIZE in *; lia). simpl.
  eexists. split; [done|]. simpl. split_and!; try done.
  - split; try done; simpl.
    + by rewrite length_insert.
    + pose proof (N.mod_upper_bound (VirtqAvail.idx (avail q) + 1) 65536 ltac:(done)).
      change (u16_max + 1) with 65536. unfold u16_max. lia.
  - assert (((VirtqAvail.idx (avail q) + 1) mod (u16_max + 1) + u16_max) mod (u16_max + 1)
      = VirtqAvail.idx (avail q)) as ->.
    { change (u16_max + 1) with 65536. unfold u16_max in *. rewrite N.Div0.add_mod_idemp_l.
      replace (VirtqAvail.idx (avail q) + 1 + 65535) with (VirtqAvail.idx (avail q) + 1 * 65536) by lia.
      rewrite N.Div0.mod_add. apply N.mod_small. lia. }
    apply list_lookup_insert_eq. rewrite Ha. unfold VIRTQ_MAX_SIZE in *. lia.
Qed.

(** The device keeps to its part of the shared memory: the used ring, the buffer and the status. *)
Definition conforming : Prop := ∀ s m s' m', bus_run s m = (s', m') →
  Shared.desc s' = Shared.desc s ∧ Shared.avail s' = Shared.avail s ∧ Shared.header s' = Shared.header s
  ∧ length (VirtqUsed.ring (Shared.used s')) = length (VirtqUsed.ring (Shared.used s)).

Lemma wait_used_spec (Hconf : conforming) n buffer b m l ans buffer' b' m' :
  queue_ok (queue b) l → wait_used n buffer b m = (ans, (buffer', b', m')) →
  queue_ok (queue b') l ∧ desc (queue b') = desc (queue b) ∧ size (queue b') = size (queue b)
  ∧ device b' = device b ∧ capacity_sectors b' = capacity_sectors b
  ∧ num_free (queue b') = num_free (queue b)
  ∧ (ans = true → has_used (queue b') = true).
Proof.
  revert buffer b m. induction n as [|n IH]; intros buffer b m Hq; cbn [wait_used]; unfold device_acts;
    destruct (bus_run (shared buffer b) m) as [s m1] eqn:E;
    destruct (Hconf _ _ _ _ E) as (Hd & Ha & Hh & Hu); simpl in Hd, Ha, Hh, Hu;
    (assert (queue_ok (queue (with_shared s b)) l) as Hq1; [|
      assert (desc (queue (with_shared s b)) = desc (queue b)) as Hd1 by done;
      destruct (has_used (queue (with_shared s b))) eqn:Eu]).
  1,4: destruct Hq as [Hch Hnd Hfree Hdl Hs Hal Hidx Hul];
    split; simpl; rewrite ?Hd, ?Ha, ?Hu; done.
  - intros [= <- <- <- <-]. split_and!; done.
  - intros [= <- <- <- <-]. split_and!; done.
  - intros [= <- <- <- <-]. split_and!; done.
  - intros E2. destruct (IH _ _ _ Hq1 E2) as (H1 & H2 & H3 & H4 & H5 & H6 & H7).
    split_and!; try done. by rewrite H2.
Qed.

Lemma in_use_next ds i j d l :
  ds !! N.to_nat i = Some d → has_next d = true → VirtqDesc.next d = j → in_use ds j l → in_use ds i (j :: l).
Proof. intros Hd Hn Hj Hl. exists d. done. Qed.

(** From the notification on: the driver returns, and unless it gives up the chain is free again. *)
Lemma complete_spec (Hconf : conforming) h l f buffer b m :
  queue_ok (queue b) f → in_use (desc (queue b)) h l → NoDup ((h :: l) ++ f) →
  len ((h :: l) ++ f) ≤ VIRTQ_MAX_SIZE → VirtioMmioDevice.base_addr (device b) + 0x100 ≤ u64_max →
  ∃ r buffer' b' m', complete h buffer b m = Return (r, (buffer', b', m'))
    ∧ device b' = device b ∧ capacity_sectors b' = capacity_sectors b
    ∧ (queue_ok (queue b') ((h :: l) ++ f) ∨ (r = Err BlockError.IoError ∧ queue_ok (queue b') f)).
Proof.
  intros Hq Huse Hnd Hlen Hbase. unfold complete.
  destruct (make_available h (queue b) f Hq) as (q1 & -> & Hq1 & Hd1 & Hs1 & Hl1 & _ & _). cbn [mbind outcome_bind].
  unfold VirtioMmioDevice.notify_queue, VirtioMmioDevice.put, VirtioMmioDevice.write_reg, add_u64, checked_add.
  simpl (device _). change (register_offset QueueNotify) with 0x50.
  rewrite (proj2 (N.leb_le _ _)) by lia. cbn [expect mbind outcome_bind].
  generalize (N.to_nat MAX_POLL_ITERATIONS). intros polls.
  destruct (wait_used _ buffer _ _) as [ans [[buffer' b2] m2]] eqn:Ew.
  assert (queue_ok (queue (b <| queue := q1 |>)) f) as Hq1' by exact Hq1.
  destruct (wait_used_spec Hconf _ _ _ _ f _ _ _ _ Hq1' Ew) as (Hq2 & Hd2 & Hs2 & Hdev & Hcap & Hnf & Hans).
  simpl in Hd2, Hs2, Hdev, Hcap, Hnf.
  destruct ans; simpl; [|eexists _, _, _, _; split; [done|]; split_and!; try done; by right].
  unfold get_used. rewrite (Hans eq_refl). simpl. destruct (ok_size _ _ Hq2) as [Hpos Hsz].
  rewrite (proj2 (N.eqb_neq (size (queue b2)) 0)) by lia. unfold slice_get.
  pose proof (N.mod_upper_bound (last_used_idx (queue b2)) (size (queue b2)) ltac:(lia)) as Hm.
  destruct (lookup_lt_is_Some_2 (VirtqUsed.ring (used (queue b2)))
    (N.to_nat (last_used_idx (queue b2) mod size (queue b2)))) as [e He].
  { rewrite (ok_used _ _ Hq2). unfold VIRTQ_MAX_SIZE in *. lia. }
  rewrite He. simpl. set (q3 := (queue b2) <| last_used_idx := _ |>).
  assert (queue_ok q3 f) as Hq3 by (by destruct Hq2).
  destruct (VirtqUsedElem.id e =? h); simpl; [|eexists _, _, _, _; split; [done|]; split_and!; try done; by right].
  destruct (free_spec q3 h l f Hq3) as (q4 & -> & Hq4 & _).
  { unfold q3. simpl. by rewrite Hd2, Hd1. }
  { done. }
  { rewrite (ok_free _ _ Hq3). unfold len, u16_max, VIRTQ_MAX_SIZE in *. rewrite length_app in Hlen. lia. }
  cbn [mbind outcome_bind]. eexists _, _, _, _. split; [done|]. split_and!; try done. by left.
Qed.

(** A request with data, from the call to the answer. *)
Lemma do_io_spec (Hconf : conforming) a ty sec buffer n w b m h rest :
  ready b h rest → VirtioMmioDevice.base_addr (device b) + 0x100 ≤ u64_max →
  ∃ r buffer' b' m', do_io a ty sec buffer n w b m = Return (r, (buffer', b', m'))
    ∧ device b' = device b ∧ capacity_sectors b' = capacity_sectors b
    ∧ (ready b' h rest ∨ (r = Err BlockError.IoError ∧ queue_ok (queue b') rest)).
Proof.
  intros Hq Hbase. unfold do_io.
  destruct (prepare_spec a ty sec n w b h rest Hq) as
    (b1 & -> & Hq1 & Hd0 & Hd1 & Hd2 & Hnd & _ & Hdev & _ & Hcap & _). cbn [mbind outcome_bind].
  destruct (complete_spec Hconf h [h + 1; h + 2] rest buffer b1 m Hq1) as (r & buffer' & b' & m' & -> & E1 & E2 & Hend).
  - eapply in_use_next; [exact Hd0|done|done|]. eapply in_use_next; [exact Hd1|by destruct w|done|].
    eexists. split; [exact Hd2|done].
  - done.
  - pose proof (ok_free _ _ Hq) as Hf. pose proof (ok_desc _ _ Hq). pose proof (ok_size _ _ Hq) as [_ Hs].
    etransitivity; [|exact Hs].
    apply (chained_length _ _ _ (ok_chain _ _ Hq)) in Hnd as Hl. simpl. rewrite H0 in Hl. unfold len. simpl in *. lia.
  - by rewrite Hdev.
  - eexists _, _, _, _. split; [done|]. rewrite E1, E2. split_and!; [done|done|]. exact Hend.
Qed.

(** ** Sessions *)

(** The free descriptors are [n] consecutive ones. *)
Definition usable (b : VirtioBlkDevice.t) : Prop :=
  (∃ h n, queue_ok (queue b) (run_of h n))
  ∧ VirtioMmioDevice.base_addr (device b) + 0x100 ≤ u64_max ∧ capacity_sectors b ≤ u64_max.

Inductive op :=
| Read (a : Addrs.t) (block : N) (buffer : list N)
| Write (a : Addrs.t) (block : N) (buffer : list N)
| Flush (a : Addrs.t).
Definition run_op (o : op) (b : VirtioBlkDevice.t) (m : M) :=
  match o with
  | Read a block buffer => read_block a block buffer b m
  | Write a block buffer => write_block a block buffer b m
  | Flush a => flush a b m
  end.
Fixpoint run_ops (ops : list op) (b : VirtioBlkDevice.t) (m : M)
    : outcome (list (result unit BlockError.t * list N) * VirtioBlkDevice.t * M) :=
  match ops with
  | [] => Return ([], b, m)
  | o :: ops =>
      '(r, (buffer, b, m)) ← run_op o b m;
      '(rs, b, m) ← run_ops ops b m;
      Return ((r, buffer) :: rs, b, m)
  end.

(** Too few descriptors: the call fails and changes nothing. *)
Lemma alloc_fails q count : num_free q < count → alloc_desc count q = Return (None, q).
Proof. intros Hc. unfold alloc_desc. by rewrite (proj2 (N.ltb_lt _ _)). Qed.

Lemma do_io_usable (Hconf : conforming) a ty sec buffer n w b m :
  usable b → ∃ r buffer' b' m', do_io a ty sec buffer n w b m = Return (r, (buffer', b', m')) ∧ usable b'.
Proof.
  intros ((h & k & Hq) & Hbase & Hcap). destruct (decide (3 ≤ k)%nat) as [Hk|Hk].
  - destruct k as [|[|[|k]]]; try lia.
    assert (run_of h (3 + k) = h :: h + 1 :: h + 2 :: run_of (h + 3) k) as Erun.
    { simpl. do 2 f_equal; try lia. f_equal; try lia. f_equal. lia. }
    change (S (S (S k))) with (3 + k)%nat in Hq. rewrite Erun in Hq.
    destruct (do_io_spec Hconf a ty sec buffer n w b m h (run_of (h + 3) k) Hq Hbase)
      as (r & buffer' & b' & m' & -> & Hd & Hc & Hend).
    eexists _, _, _, _. split; [done|]. unfold usable. rewrite Hd, Hc. split_and!; try done.
    destruct Hend as [Hr|[_ Hr]]; [exists h, (3 + k)%nat; by rewrite Erun|by eexists _, _].
  - unfold do_io, prepare_io. rewrite alloc_fails.
    + simpl. eexists _, _, _, _. split; [done|]. unfold usable. simpl. split_and!; eauto.
    + rewrite (ok_free _ _ Hq). unfold len. rewrite length_run_of. lia.
Qed.

Lemma flush_usable (Hconf : conforming) a b m :
  usable b → ∃ r buffer' b' m', flush a b m = Return (r, (buffer', b', m')) ∧ usable b'.
Proof.
  intros ((h & k & Hq) & Hbase & Hcap). unfold flush. destruct (decide (2 ≤ k)%nat) as [Hk|Hk].
  - destruct k as [|[|k]]; try lia.
    assert (run_of h (2 + k) = h :: h + 1 :: run_of (h + 2) k) as Erun.
    { simpl. do 2 f_equal; try lia. f_equal. lia. }
    change (S (S k)) with (2 + k)%nat in Hq. rewrite Erun in Hq.
    destruct (alloc_spec (queue b) _ 2 h _ Hq eq_refl) as (q1 & E & Hq1 & Hd1 & Hs1 & _);
      [done|unfold len; simpl; lia|].
    change (drop (N.to_nat 2) (h :: h + 1 :: run_of (h + 2) k)) with (run_of (h + 2) k) in Hq1.
    pose proof (ok_nodup _ _ Hq) as Hnd.
    pose proof (chained_length _ _ _ (ok_chain _ _ Hq) Hnd) as Hl.
    assert (N.to_nat (h + 1) < length (desc (queue b)))%nat as Hlt.
    { eapply chained_lt; [apply (ok_chain _ _ Hq)|]. right. left. }
    rewrite (ok_desc _ _ Hq) in Hlt, Hl. pose proof (ok_size _ _ Hq) as [_ Hsz].
    pose proof (ok_desc _ _ Hq1) as Hlen1. unfold VIRTQ_MAX_SIZE in Hsz.
    assert (h ∉ run_of (h + 2) k ∧ h + 1 ∉ run_of (h + 2) k) as [Hn0 Hn1].
    { split; intros ?%elem_of_run_of; lia. }
    rewrite E. cbn [mbind outcome_bind]. unfold add_u16, u16_max.
    rewrite (proj2 (N.leb_le _ _)) by lia. cbn [mbind outcome_bind].
    rewrite set_desc_spec by (simpl; (done || rewrite Hs1; lia)). cbn [mbind outcome_bind].
    rewrite set_desc_spec by (simpl; rewrite ?length_insert; (done || rewrite Hs1; lia)).
    cbn [mbind outcome_bind].
    match goal with |- context [complete h [] ?b1 m] =>
      destruct (complete_spec Hconf h [h + 1] (run_of (h + 2) k) [] b1 m)
        as (r & buffer' & b' & m' & -> & E1 & E2 & Hend)
    end.
    + eapply (queue_ok_desc q1); [done|reflexivity| |simpl; by rewrite !length_insert].
      do 2 (apply chained_insert; [done|]). apply (ok_chain _ _ Hq1).
    + eapply in_use_next.
      * simpl. rewrite list_lookup_insert_ne by lia. apply list_lookup_insert_eq. rewrite Hlen1, Hs1. lia.
      * done.
      * done.
      * eexists. split; [simpl; apply list_lookup_insert_eq; rewrite length_insert, Hlen1, Hs1; lia|done].
    + done.
    + unfold len, VIRTQ_MAX_SIZE. simpl in *. lia.
    + done.
    + simpl in E1, E2. eexists _, _, _, _. split; [done|]. unfold usable. rewrite E1, E2. split_and!; try done.
      destruct Hend as [Hr|[_ Hr]]; [exists h, (2 + k)%nat; by rewrite Erun|by eexists _, _].
  - rewrite alloc_fails.
    + simpl. eexists _, _, _, _. split; [done|]. unfold usable. simpl. split_and!; eauto.
    + rewrite (ok_free _ _ Hq). unfold len. rewrite length_run_of. lia.
Qed.

Lemma run_op_usable (Hconf : conforming) o b m :
  usable b → ∃ r buffer b' m', run_op o b m = Return (r, (buffer, b', m')) ∧ usable b'.
Proof.
  intros Hu. pose proof Hu as (_ & _ & Hcap).
  assert (∀ block, block < block_count b → block * SECTORS_PER_BLOCK <= u64_max) as Hmul.
  { intros block Hb. unfold block_count, SECTORS_PER_BLOCK, BLOCK_SIZE, SECTOR_SIZE in *.
    change (4096 / 512) with 8 in *. pose proof (N.Div0.mul_div_le (capacity_sectors b) 8). lia. }
  destruct o as [a block buffer|a block buffer|a]; simpl; [| |by apply flush_usable];
    unfold read_block, write_block; (destruct (N.leb_spec (block_count b) block) as [Hb|Hb];
      [eauto 10|]); (destruct (_ <? BLOCK_SIZE); [eauto 10|]); unfold mul_u64;
    rewrite (proj2 (N.leb_le _ _)) by auto; cbn [mbind outcome_bind]; by apply do_io_usable.
Qed.
(** C19: Every session with the block driver is answered.  With a device that writes only what is
    its to write, any sequence of reads, writes and flushes returns, one answer for each call, and
    leaves the free descriptors a run of consecutive ones, which is what the driver takes for
    granted when it uses [head + 1] and [head + 2]: no index is out of range, no counter
    overflows and no loop runs on, also after time-outs, stray answers and an exhausted queue. *)
Theorem virtio_session_never_panics (ops : list op) (b : VirtioBlkDevice.t) (m : M) :
  conforming → usable b →
  ∃ answers b' m', run_ops ops b m = Return (answers, b', m') ∧ usable b' ∧ length answers = length ops.
Proof.
  intros Hconf. revert b m. induction ops as [|o ops IH]; intros b m Hu; simpl; [by eexists _, _, _|].
  destruct (run_op_usable Hconf o b m Hu) as (r & buffer & b1 & m1 & -> & Hu1). cbn [mbind outcome_bind].
  destruct (IH b1 m1 Hu1) as (rs & b2 & m2 & -> & Hu2 & Hl). eexists _, _, _. split; [done|]. simpl.
  by rewrite Hl.
Qed.

(** C34: A request reaches the device as it was meant.  When the driver has filled its three
    descriptors and moved the available index, a device that takes the newest entry of the
    available ring, follows the links and looks into memory at the addresses and for the
    lengths the descriptors give finds a well-formed request: a header of 16 bytes it may only
    read, with the type and the sector in it; the caller's buffer with its length, to be filled
    or, for a write, with the first bytes of the caller's data in it; and one status byte that
    it may write, at the address of the driver's.  Three free descriptors, and header and
    buffer that do not overlap in memory, are assumed. *)
Theorem virtio_request_reaches_device a ty sec buffer n w (b : VirtioBlkDevice.t) h rest :
  ready b h rest → ty < 2 ^ 32 → sec < 2 ^ 64 → n < 2 ^ 32 → n ≤ len buffer → apart a buffer →
  ∃ b' q', prepare_io a ty sec n w b = Return (Some h, b') ∧ add_to_avail h (queue b') = Return q'
    ∧ device_reads (memory a b' buffer) q'
      = Some (mk_request ty sec (Addrs.buffer a) n
                (if w then Some (take (N.to_nat n) buffer) else None) (Addrs.status a)).
Proof.
  intros Hq Hty Hsec Hn Hbuf Hapart. destruct (prepare_spec a ty sec n w b h rest Hq) as
    (b1 & E1 & Hq1 & Hd0 & Hd1 & Hd2 & _ & Hh & _).
  destruct (make_available h (queue b1) rest Hq1) as (q2 & E2 & _ & Hd & Hs & _ & _ & Hr).
  assert (length (req_header b1) = 16%nat) as Hlen by by rewrite Hh; unfold header_bytes; rewrite !length_app, !to_le_length.
  exists b1, q2. split_and!; [done|done|]. unfold device_reads. rewrite Hs, Hr. cbn [mbind option_bind].
  rewrite Hd, Hd0. cbn [mbind option_bind VirtqDesc.next]. rewrite Hd1. cbn [mbind option_bind VirtqDesc.next].
  rewrite Hd2. cbn [mbind option_bind VirtqDesc.addr VirtqDesc.len VirtqDesc.flags].
  rewrite N.mod_small, read_header, read_buffer by done.
  assert (from_le (take 4 (req_header b1)) = ty ∧ from_le (take 8 (drop 8 (req_header b1))) = sec) as [Ety Esec].
  { rewrite Hh. unfold header_bytes. rewrite take_app_length' by (symmetry; apply to_le_length). rewrite app_assoc.
    rewrite drop_app_length' by (rewrite length_app, !to_le_length; done).
    rewrite take_ge by (rewrite to_le_length; done). by rewrite !from_le_to_le. }
  by destruct w; cbn; rewrite Ety, Esec.
Qed.

(** A device that never answers: the driver gives up, and does not free the descriptors
    (virtio_blk.rs:194). *)
Lemma silent_device_leaks a ty sec buffer n w b m h rest :
  (∀ s m', bus_run s m' = (s, m')) → ready b h rest → has_used (queue b) = false →
  VirtioMmioDevice.base_addr (device b) + 0x100 ≤ u64_max →
  ∃ b' m', do_io a ty sec buffer n w b m = Return (Err BlockError.IoError, (buffer, b', m'))
    ∧ num_free (queue b') + 3 = num_free (queue b).
Proof.
  intros Hsilent Hq Hu Hbase. unfold do_io.
  destruct (prepare_spec a ty sec n w b h rest Hq) as
    (b1 & -> & Hq1 & _ & _ & _ & _ & _ & Hdev & _ & _ & Hu1 & Hl1). cbn [mbind outcome_bind]. unfold complete.
  destruct (make_available h (queue b1) rest Hq1) as (q & -> & Hq2 & _ & _ & Hl2 & Hu2 & _).
  cbn [mbind outcome_bind].
  unfold VirtioMmioDevice.notify_queue, VirtioMmioDevice.put, VirtioMmioDevice.write_reg, add_u64, checked_add.
  simpl (device _). change (register_offset QueueNotify) with 0x50.
  rewrite (proj2 (N.leb_le _ _)) by (rewrite Hdev; lia). cbn [expect mbind outcome_bind].
  assert (∀ k b0 m0, has_used (queue b0) = false → wait_used k buffer b0 m0 = (false, (buffer, b0, m0))) as Hwait.
  { intros k b0 m0 Hn. assert (device_acts buffer b0 m0 = (buffer, b0, m0)) as Hid.
    { unfold device_acts. rewrite Hsilent. by destruct b0 as [? [] ? ? ?]. }
    induction k as [|k IH]; cbn [wait_used]; rewrite Hid, Hn; done. }
  rewrite Hwait by (unfold has_used; simpl; rewrite Hu2, Hl2, Hu1, Hl1; exact Hu).
  eexists _, _. split; [done|]. simpl. rewrite (ok_free _ _ Hq2), (ok_free _ _ Hq). unfold len. simpl. lia.
Qed.
End with_bus.

(** A new queue: all descriptors are free, in order. *)
Lemma new_queue_ok size memory :
  0 < size → size ≤ VIRTQ_MAX_SIZE → size ≤ len memory →
  queue_ok (Virtqueue.new size memory VirtqAvail.new VirtqUsed.new) (run_of 0 (N.to_nat size)).
Proof.
  intros Hpos Hmax Hmem. unfold len in Hmem. split; simpl; try done.
  - assert (∀ k i, (k + i = N.to_nat size)%nat →
      chained (imap (λ i d, d <| VirtqDesc.next := if N.of_nat i + 1 <? size then N.of_nat i + 1 else 0 |>)
                 (take (N.to_nat size) memory)) (N.of_nat i) (run_of (N.of_nat i) k)) as Hgo; [|by apply (Hgo _ 0%nat)].
    induction k as [|k IH]; intros i Hi; cbn [run_of chained]; [done|]. split; [done|].
    destruct (lookup_lt_is_Some_2 (take (N.to_nat size) memory) i) as [d Hd]; [rewrite length_take; lia|].
    eexists. rewrite Nat2N.id, list_lookup_imap, Hd. split; [done|]. simpl.
    destruct k as [|k]; [done|]. rewrite (proj2 (N.ltb_lt _ _)) by lia.
    replace (N.of_nat i + 1) with (N.of_nat (S i)) by lia. apply IH. lia.
  - apply NoDup_run_of.
  - unfold len. rewrite length_run_of. lia.
  - rewrite length_imap, length_take. lia.
Qed.

(** A device that answers everything at once, and one with a queue of four. *)
Definition answering : VirtioBus unit := {|
  bus_read := λ _ m, (0, m);
  bus_write := λ _ _ m, m;
  bus_run := λ s m,
    let u := Shared.used s in let v := Shared.avail s in
    if VirtqUsed.idx u =? VirtqAvail.idx v then (s, m)
    else
      let slot := N.to_nat (VirtqUsed.idx u mod 4) in
      (Shared.mk (Shared.desc s) v
         (VirtqUsed.mk (VirtqUsed.flags u) (VirtqAvail.idx v)
            (<[slot := VirtqUsedElem.mk (VirtqAvail.ring v !!! slot) 0]> (VirtqUsed.ring u)) (VirtqUsed.avail_event u))
         (Shared.header s) (Shared.buffer s) 0, m)
|}.
Lemma answering_conforms : conforming (H := answering).
Proof.
  intros s m s' m'. simpl. destruct (_ =? _); intros [= <- <-]; [done|]. simpl. by rewrite length_insert.
Qed.
Definition small_device : VirtioBlkDevice.t :=
  VirtioBlkDevice.mk (VirtioMmioDevice.mk 0xfeb00000)
    (Virtqueue.new 4 (replicate 4 VirtqDesc.new) VirtqAvail.new VirtqUsed.new) 64 (replicate 16 0) 0.
Lemma small_ready : ready small_device 0 [3].
Proof. by apply (new_queue_ok 4). Qed.
Lemma small_usable : usable small_device.
Proof. split; [exists 0, 4%nat; by apply (new_queue_ok 4)|done]. Qed.
Definition small_ops : list op :=
  let a := Addrs.mk 0x1000 0x2000 0x3000 in
  [Write a 7 (replicate 4096 1); Read a 8 (replicate 4096 0); Flush a; Read a 0 []; Read a 0 (replicate 4096 0)].

Lemma virtio_session_never_panics_witness :
  (∃ answers b' m', run_ops (H := answering) small_ops small_device tt = Return (answers, b', m')
    ∧ usable b' ∧ length answers = 5%nat)
  ∧ (match run_ops (H := answering) small_ops small_device tt with
     | Return (answers, _, _) => answers.*1
     | _ => []
     end) = [Ok tt; Err BlockError.OutOfBounds; Ok tt; Err BlockError.InvalidSize; Ok tt].
Proof.
  split; [|by vm_compute].
  apply (virtio_session_never_panics (H := answering) small_ops small_device tt).
  - exact answering_conforms.
  - exact small_usable.
Defined.

Lemma virtio_request_reaches_device_witness :
  let a := Addrs.mk 0x1000 0x2000 0x3000 in
  ∃ b' q', prepare_io a VIRTIO_BLK_T_OUT 56 BLOCK_SIZE true small_device = Return (Some 0, b')
    ∧ add_to_avail 0 (queue b') = Return q'
    ∧ device_reads (memory a b' (replicate 4097 7)) q'
      = Some (mk_request 1 56 0x3000 4096 (Some (replicate 4096 7)) 0x2000).
Proof.
  apply (virtio_request_reaches_device (Addrs.mk 0x1000 0x2000 0x3000) VIRTIO_BLK_T_OUT 56 (replicate 4097 7)
    BLOCK_SIZE true small_device 0 [3]); [exact small_ready|done|done|done|done|by left].
Defined.
End VirtioSpec.
