(* ===== verification/PipelineHost.v ===== *)
(** * The pipeline component of the workspace

    [services_workspace_manager/src/lib.rs]: a component that runs pipelines of one stage typed at
    its console.  Its kernel is the simulated kernel with echo handlers: a message sent to a channel
    with a handler is answered at once, and the answer is what the channel delivers.

    Identifiers come from two streams: [uuids], drawn by the component and the pipeline executor, and
    [reply_ids], drawn for the answers; the state counts what was drawn. *)

From S2P Require Import Prelude Debug CoreTypes Resources Ipc Identity Policy Queue AddrSpace SyscallGate Kernel Lifecycle Pipeline Editor Text Input Views Layout Console.
Open Scope string_scope.
Open Scope list_scope.
Open Scope N_scope.

(** A [string] holds the bytes of a Rust string, a [Str.t] its characters. *)
Definition utf8_string (s : Str.t) : string :=
  String.string_of_list_ascii (Ascii.ascii_of_N <$> Utf8.as_bytes s).
Definition utf8_text (s : string) : Str.t := default [] (Utf8.from_utf8 (Utf8.bytes s)).

(** ** Numbers *)

(** The value of a digit in bases up to sixteen. *)
Definition digit_value (c : N) : option N :=
  if (48 <=? c) && (c <=? 57) then Some (c - 48)
  else if (97 <=? c) && (c <=? 102) then Some (c - 87)
  else if (65 <=? c) && (c <=? 70) then Some (c - 55)
  else None.
Fixpoint digits_from (radix bound acc : N) (s : Str.t) : option N :=
  match s with
  | [] => Some acc
  | c :: s =>
      d ← digit_value c;
      if (d <? radix) && (acc * radix + d <=? bound) then digits_from radix bound (acc * radix + d) s
      else None
  end.
(** [from_str_radix] of an unsigned type with this largest value: an optional plus sign and at
    least one digit. *)
Definition from_str_radix (radix bound : N) (s : Str.t) : option N :=
  match s with
  | [] => None
  | [43] => None
  | 43 :: s => digits_from radix bound 0 s
  | _ => digits_from radix bound 0 s
  end.
Definition u128_max : N := 2 ^ 128 - 1.
(** [strip_prefix]. *)
Definition strip_prefix (p s : Str.t) : option Str.t :=
  if Str.starts_with p s then Some (drop (length p) s) else None.
(* services_workspace_manager/src/lib.rs:2858-2865 WorkspaceManager::parse_service_id_token *)
Definition parse_service_id_token (token : Str.t) : option ServiceId.t :=
  value ← match strip_prefix (Str.of_string "0x") token with
          | Some hex => from_str_radix 16 u128_max hex
          | None => from_str_radix 10 u128_max token
          end;
  Some (ServiceId.from_u128 value).

(** ** The kernel with handlers *)

(** The other side of the JSON that [StageCodec] reads and writes; the answers of [serde_json] to
    what the executor sends and expects. *)
Class HandlerCodec := {
  decode_request : MessagePayload.t → result TypedPayload.t string;
  encode_response : StageResult.t → result MessagePayload.t string
}.
Class LawfulHandlerCodec `{StageCodec} `{HandlerCodec} : Prop := {
  request_round_trip p : ∃ m, encode_request p = Ok m ∧ decode_request m = Ok p;
  response_round_trip r : ∃ m, encode_response r = Ok m ∧ decode_response m = Ok r
}.

Module PipelineStageHandler.
(* services_workspace_manager/src/lib.rs:1002-1005 PipelineStageHandler *)
Inductive t := Echo.
End PipelineStageHandler.

Module PipelineHarnessKernel.
(** [answered] counts the identifiers drawn for answers. *)
(* services_workspace_manager/src/lib.rs:1020-1024 PipelineHarnessKernel *)
Record t := mk {
  inner : Kernel.t;
  handlers_by_channel : gmap ChannelId.t PipelineStageHandler.t;
  service_to_channel : gmap ServiceId.t ChannelId.t;
  answered : nat
}.
#[global] Instance rebuild_t : Rebuild t := λ k,
  mk (inner k) (handlers_by_channel k) (service_to_channel k) (answered k).
(* services_workspace_manager/src/lib.rs:1028-1034 PipelineHarnessKernel::new *)
Definition new : outcome t := k ← Kernel.new; Return (mk k ∅ ∅ 0).
(* services_workspace_manager/src/lib.rs:1089-1091 PipelineHarnessKernel::handler_count *)
Definition handler_count (k : t) : N := N.of_nat (size (handlers_by_channel k)).

Section with_format.
Context `{UuidFormat}.
(** [drawn] is the new channel. *)
(* services_workspace_manager/src/lib.rs:1036-1046 PipelineHarnessKernel::ensure_echo_handler *)
Definition ensure_echo_handler (drawn : ChannelId.t) (service_id : ServiceId.t) (k : t)
    : result unit KernelError.t * t :=
  if bool_decide (is_Some (service_to_channel k !! service_id)) then (Ok tt, k)
  else
    match Kernel.create_channel drawn (inner k) with
    | (Err e, i) => (Err e, k <| inner := i |>)
    | (Ok channel, i) =>
        match Kernel.register_service service_id channel i with
        | (Err e, i) => (Err e, k <| inner := i |>)
        | (Ok _, i) =>
            (Ok tt, k <| inner := i |> <| handlers_by_channel ::= <[channel := PipelineStageHandler.Echo]> |>
                      <| service_to_channel ::= <[service_id := channel]> |>)
        end
    end.
End with_format.

Definition OUTPUT_SCHEMA : PayloadSchemaId.t := PayloadSchemaId.new "pipeline/output".
(** The answer of the echo handler. *)
(* services_workspace_manager/src/lib.rs:1063-1071 PipelineHarnessKernel::maybe_handle_stage_invoke *)
Definition echo (input : TypedPayload.t) : StageResult.t :=
  StageResult.Success
    (TypedPayload.new OUTPUT_SCHEMA (TypedPayload.schema_version input) (TypedPayload.data input)) [0x1D].

Section with_replies.
Context `{HashOrder} `{UuidFormat} `{DefaultHasher} `{HandlerCodec} (reply_ids : nat → Uuid).

(* services_workspace_manager/src/lib.rs:1048-1087 PipelineHarnessKernel::maybe_handle_stage_invoke *)
Definition maybe_handle_stage_invoke (channel : ChannelId.t) (message : MessageEnvelope.t) (k : t)
    : result (option MessageEnvelope.t) KernelError.t * t :=
  match handlers_by_channel k !! channel with
  | None => (Ok None, k)
  | Some PipelineStageHandler.Echo =>
      match decode_request (MessageEnvelope.payload message) with
      | Err e => (Err (KernelError.SendFailed ("Invalid stage request: " +:+ e)), k)
      | Ok input =>
          match encode_response (echo input) with
          | Err e => (Err (KernelError.SendFailed ("Failed to serialize response: " +:+ e)), k)
          | Ok payload =>
              let id := MessageId.mk (reply_ids (answered k)) in
              (Ok (Some (MessageEnvelope.with_correlation (MessageEnvelope.id message)
                 (MessageEnvelope.new id (MessageEnvelope.destination message)
                    (MessageEnvelope.action message) (MessageEnvelope.schema_version message) payload))),
               k <| answered ::= S |>)
          end
      end
  end.
(** A call of the inner kernel. *)
Definition on_inner {A} (f : Kernel.t → outcome (result A KernelError.t * Kernel.t)) (k : t)
    : outcome (result A KernelError.t * t) :=
  '(r, i) ← f (inner k); Return (r, k <| inner := i |>).
(* services_workspace_manager/src/lib.rs:1104-1114 PipelineHarnessKernel::send_message *)
Definition send_message (channel : ChannelId.t) (message : MessageEnvelope.t) (k : t)
    : outcome (result unit KernelError.t * t) :=
  match maybe_handle_stage_invoke channel message k with
  | (Err e, k) => Return (Err e, k)
  | (Ok (Some response), k) => on_inner (Kernel.send_message channel response) k
  | (Ok None, k) => on_inner (Kernel.send_message channel message) k
  end.
(* services_workspace_manager/src/lib.rs:1094-1151 KernelApi for PipelineHarnessKernel *)
Definition harness_api : KernelApi t := {|
  api_spawn_task d descriptor := on_inner (api_spawn_task d descriptor);
  api_create_channel d := on_inner (api_create_channel d);
  api_send_message := send_message;
  api_receive_message channel timeout := on_inner (Kernel.receive_message channel timeout);
  api_now k := Kernel.now (inner k);
  api_sleep duration := on_inner (Kernel.sleep duration);
  api_grant_capability task cap := on_inner (api_grant_capability task cap);
  api_register_service service_id channel := on_inner (api_register_service service_id channel);
  api_lookup_service service_id k := Kernel.lookup_service service_id (inner k)
|}.
End with_replies.
End PipelineHarnessKernel.

(** ** The component *)

(* services_pipeline_executor/src/lib.rs:35-76 ExecutorError (Display) *)
Definition display_executor_error (e : ExecutorError.t) : string :=
  match e with
  | ExecutorError.ValidationFailed e => "Pipeline validation failed: " +:+ PipelineError.display e
  | ExecutorError.KernelError m => "Kernel error: " +:+ m
  | ExecutorError.HandlerNotFound m => "Stage handler not found: " +:+ m
  | ExecutorError.SchemaValidation expected actual =>
      "Schema validation failed: expected " +:+ expected +:+ ", got " +:+ actual
  | ExecutorError.Serialization m => "Serialization error: " +:+ m
  | ExecutorError.PolicyDenied policy event reason _ =>
      "Policy denied " +:+ event +:+ " by " +:+ policy +:+ ": " +:+ reason
  | ExecutorError.PolicyRequire policy event action _ =>
      "Policy requires action for " +:+ event +:+ " by " +:+ policy +:+ ": " +:+ action
  | ExecutorError.PolicyDerivedAuthorityInvalid policy event reason delta _ =>
      "Policy derived authority invalid for " +:+ event +:+ " by " +:+ policy +:+ ": " +:+ reason
      +:+ ". Delta: " +:+ delta
  end.

Module PipelineRuntime.
(* services_workspace_manager/src/lib.rs:1154-1159 PipelineRuntime *)
Record t := mk {
  console : InlineConsole.t;
  executor : PipelineExecutor.t;
  kernel : PipelineHarnessKernel.t;
  default_handler_service : ServiceId.t
}.
#[global] Instance rebuild_t : Rebuild t := λ r,
  mk (console r) (executor r) (kernel r) (default_handler_service r).

Section with_format.
Context `{UuidFormat}.
(* services_workspace_manager/src/lib.rs:1163-1180 PipelineRuntime::new *)
Definition new (drawn : ChannelId.t) : outcome t :=
  let service := ServiceId.from_u128 1 in
  k ← PipelineHarnessKernel.new;
  let k := (PipelineHarnessKernel.ensure_echo_handler drawn service k).2 in
  Return (mk (InlineConsole.new (Str.of_string "pipeline> ")
                [Str.of_string "Pipeline executor ready";
                 Str.of_string "Type `run` to execute a pipeline stage"])
             PipelineExecutor.new k service).
End with_format.

Section with_kernel.
Context `{HashOrder} `{UuidFormat} `{DefaultHasher} `{StageCodec} `{HandlerCodec}.
Context (uuids reply_ids : nat → Uuid).

Definition INPUT_SCHEMA : PayloadSchemaId.t := PayloadSchemaId.new "pipeline/input".
(** The pipeline of one stage, with the identifiers drawn for the stage and the pipeline. *)
(* services_workspace_manager/src/lib.rs:2820-2834 WorkspaceManager::run_pipeline_command *)
Definition interactive_pipeline (stage_id : StageId.t) (pipeline_id : PipelineId.t) (service : ServiceId.t)
    : PipelineSpec.t :=
  PipelineSpec.add_stage
    (StageSpec.new stage_id "stage1" service "invoke" INPUT_SCHEMA PipelineHarnessKernel.OUTPUT_SCHEMA)
    (PipelineSpec.new pipeline_id "interactive-pipeline" INPUT_SCHEMA PipelineHarnessKernel.OUTPUT_SCHEMA).
(** [n] identifiers have been drawn from [uuids]; the one for a new channel is set aside also when
    there is one. *)
(* services_workspace_manager/src/lib.rs:2797-2852 WorkspaceManager::run_pipeline_command *)
Definition run (rest : list Str.t) (r : t) (n : nat) : outcome (list Str.t * (t * nat)) :=
  let '(service_id, rest) :=
    match rest with
    | first :: others =>
        match parse_service_id_token first with
        | Some parsed => (parsed, others)
        | None => (default_handler_service r, rest)
        end
    | [] => (default_handler_service r, rest)
    end in
  let '(registered, k) :=
    PipelineHarnessKernel.ensure_echo_handler (ChannelId.mk (uuids n)) service_id (kernel r) in
  let r := r <| kernel := k |> in
  match registered with
  | Err err =>
      Return ([Str.of_string "Pipeline failed: unable to register handler "
               ++ utf8_text (ServiceId.display service_id) ++ Str.of_string " ("
               ++ utf8_text (display_kernel_error err) ++ Str.of_string ")"], (r, S n))
  | Ok _ =>
      let payload_text := join_with [32] rest in
      let payload_bytes :=
        match payload_text with [] => Utf8.bytes "{}" | _ => Utf8.as_bytes payload_text end in
      let spec := interactive_pipeline (StageId.mk (uuids (S n))) (PipelineId.mk (uuids (S (S n)))) service_id in
      let input := TypedPayload.new INPUT_SCHEMA (PayloadSchemaVersion.new 1 0) payload_bytes in
      '(result, (x, (k, n))) ←
        PipelineExecutor.execute (H := PipelineHarnessKernel.harness_api reply_ids) uuids (λ _, None)
          spec input (executor r) (kernel r, S (S (S n)));
      let r := r <| executor := x |> <| kernel := k |> in
      Return ([match result with
               | Ok (output, trace) =>
                   Str.of_string "Pipeline succeeded: schema="
                   ++ utf8_text (PayloadSchemaId.as_str (TypedPayload.schema_id output))
                   ++ Str.of_string (" bytes=" +:+ pretty (len (TypedPayload.data output))
                                     +:+ " stages=" +:+ pretty (len (ExecutionTrace.entries trace)))
               | Err err => Str.of_string "Pipeline failed: " ++ utf8_text (display_executor_error err)
               end], (r, n))
  end.
(* services_workspace_manager/src/lib.rs:2780-2855 WorkspaceManager::run_pipeline_command *)
Definition run_pipeline_command (command : Str.t) (r : t) (n : nat) : outcome (list Str.t * (t * nat)) :=
  match split_whitespace command with
  | [] => Return ([], (r, n))
  | op :: parts =>
      if bool_decide (op = Str.of_string "help") then
        Return (Str.of_string <$> ["Pipeline commands:"; "  run [service_id_u128|0xhex] [payload]";
                   "  (auto-registers echo handler for requested service)"; "  status"], (r, n))
      else if bool_decide (op = Str.of_string "status") then
        Return ([Str.of_string ("Pipeline runtime online (registered handlers: "
                   +:+ pretty (PipelineHarnessKernel.handler_count (kernel r)) +:+ ")")], (r, n))
      else if bool_decide (op = Str.of_string "run") then run parts r n
      else Return ([Str.of_string "Unknown pipeline command: " ++ op], (r, n))
  end.
End with_kernel.
End PipelineRuntime.
