(* ===== verification/Workspace.v ===== *)
(** * The workspace manager

    [services_workspace_manager/src/{lib,commands,boot_profile}.rs]: the manager launches components
    (editors, consoles, pickers, pipelines, custom hosts), gives them views, an input subscription and
    a tab, moves the focus, routes keys to the focused component or to a global action, executes typed
    commands, keeps settings and the boot profile in storage, and renders and saves the session.

    Identifiers are drawn from the stream [uuids]; the state counts those drawn and holds the
    cancellation cells that components share with their tokens. *)

From S2P Require Import Prelude Debug CoreTypes Resources Ipc Identity Policy Queue AddrSpace SyscallGate Kernel Lifecycle Storage Pipeline Editor Text Input Views Layout Console Packages Settings Palette Commands FsView Picker EditorVi ViEditor PipelineHost.
Open Scope string_scope.
Open Scope list_scope.
Open Scope N_scope.

(** Formatting and parsing of the standard library that goes beyond texts and integers: [f64], and
    the derived [Debug] of key events. *)
Class StdFormat := {
  f64_display : N → Str.t;
  f64_parse : Str.t → option N;
  key_event_debug : KeyEvent.t → Str.t
}.

(** ** The boot profile ([boot_profile.rs]) *)

Module BootConfig.
(* services_workspace_manager/src/boot_profile.rs:70-86 BootConfig *)
Record t := mk {
  profile : BootProfile.t;
  auto_start : list Str.t;
  editor_file : option Str.t;
  kiosk_app : option Str.t;
  extra : gmap Str.t Str.t
}.
#[global] Instance rebuild_t : Rebuild t := λ c,
  mk (profile c) (auto_start c) (editor_file c) (kiosk_app c) (extra c).
(* services_workspace_manager/src/boot_profile.rs:90-98 BootConfig::new *)
Definition new (p : BootProfile.t) : t := mk p [] None None ∅.
(* services_workspace_manager/src/boot_profile.rs:117-120 BootConfig::with_auto_start *)
Definition with_auto_start (services : list Str.t) (c : t) : t := c <| auto_start := services |>.
(* services_workspace_manager/src/boot_profile.rs:123-126 BootConfig::with_editor_file *)
Definition with_editor_file (file : Str.t) (c : t) : t := c <| editor_file := Some file |>.
(* services_workspace_manager/src/boot_profile.rs:129-132 BootConfig::with_kiosk_app *)
Definition with_kiosk_app (app : Str.t) (c : t) : t := c <| kiosk_app := Some app |>.
(* services_workspace_manager/src/boot_profile.rs:135-138 BootConfig::with_extra *)
Definition with_extra (key value : Str.t) (c : t) : t := c <| extra ::= <[key := value]> |>.
(* services_workspace_manager/src/boot_profile.rs:101-104 BootConfig::workspace *)
Definition workspace : t := with_auto_start [str "logger"; str "storage"] (new BootProfile.Workspace).
(* services_workspace_manager/src/boot_profile.rs:107-109 BootConfig::editor *)
Definition editor : t := with_editor_file (str "/tmp/scratch.txt") (new BootProfile.Editor).
(* services_workspace_manager/src/boot_profile.rs:112-114 BootConfig::kiosk *)
Definition kiosk : t := with_kiosk_app (str "demo-app") (new BootProfile.Kiosk).
(* services_workspace_manager/src/boot_profile.rs:152-154 BootConfig::default *)
Definition default : t := workspace.
End BootConfig.

(** [serde_json::to_string_pretty] and [serde_json::from_str] on [BootConfig]. *)
Class BootJson := {
  boot_to_json : BootConfig.t → result Str.t Str.t;
  boot_from_json : Str.t → result BootConfig.t Str.t
}.
(** The text of a configuration reads back, and is text. *)
Class LawfulBootJson `{BootJson} : Prop :=
  boot_round_trip c : ∃ s, boot_to_json c = Ok s ∧ boot_from_json s = Ok c ∧ Forall Utf8.scalar s.

Module BootProfileManager.
(* services_workspace_manager/src/boot_profile.rs:158-164 BootProfileManager *)
Record t := mk { config : BootConfig.t; loaded : bool }.
#[global] Instance rebuild_t : Rebuild t := λ m, mk (config m) (loaded m).
(* services_workspace_manager/src/boot_profile.rs:168-173 BootProfileManager::new *)
Definition new : t := mk BootConfig.default false.
(* services_workspace_manager/src/boot_profile.rs:15-15 BOOT_PROFILE_OBJECT_UUID *)
Definition BOOT_PROFILE_OBJECT_UUID : N := 0x6b2af5a80dc34da082f8f3d3b20f4ec3.
(* services_workspace_manager/src/boot_profile.rs:261-263 BootProfileManager::boot_profile_object_id *)
Definition boot_profile_object_id : ObjectId.t := ObjectId.from_uuid BOOT_PROFILE_OBJECT_UUID.
(* services_workspace_manager/src/boot_profile.rs:242-244 BootProfileManager::set_config *)
Definition set_config (c : BootConfig.t) (m : t) : t := m <| config := c |>.
(* services_workspace_manager/src/boot_profile.rs:247-249 BootProfileManager::set_profile *)
Definition set_profile (p : BootProfile.t) (m : t) : t :=
  m <| config ::= λ c, c <| BootConfig.profile := p |> |>.
(* services_workspace_manager/src/boot_profile.rs:257-259 BootProfileManager::profile *)
Definition profile (m : t) : BootProfile.t := BootConfig.profile (config m).

Section with_json.
Context `{BootJson} `{UuidFormat}.
(* services_workspace_manager/src/boot_profile.rs:176-209 BootProfileManager::load *)
Definition load (drawn : TransactionId.t) (storage : option JournaledStorage.t) (m : t)
    : result unit Str.t * (t * option JournaledStorage.t) :=
  match storage with
  | None => (Ok tt, (mk BootConfig.default true, None))
  | Some s =>
      match JournaledStorage.begin_transaction drawn s with
      | (Err e, s) =>
          (Err (str "Failed to begin boot profile load transaction: " ++ utf8_text (TransactionError.display e)),
           (m, Some s))
      | (Ok tx, s) =>
          let read := JournaledStorage.read_data tx boot_profile_object_id s in
          let s := (JournaledStorage.rollback (tx, s)).2.2 in
          match read with
          | Ok bytes =>
              let c := json ← Utf8.from_utf8 bytes;
                       match boot_from_json json with Ok c => Some c | Err _ => None end in
              (Ok tt, (mk (default BootConfig.default c) true, Some s))
          | Err (TransactionError.ObjectNotFound _) => (Ok tt, (mk BootConfig.default true, Some s))
          | Err err =>
              (Err (str "Failed to read boot profile from storage: " ++ utf8_text (TransactionError.display err)),
               (m, Some s))
          end
      end
  end.
(* services_workspace_manager/src/boot_profile.rs:212-234 BootProfileManager::save *)
Definition save (drawn : TransactionId.t) (version : VersionId.t) (storage : option JournaledStorage.t) (m : t)
    : result unit Str.t * option JournaledStorage.t :=
  match storage with
  | None => (Ok tt, None)
  | Some s =>
      match boot_to_json (config m) with
      | Err e => (Err (str "Failed to serialize boot profile: " ++ e), Some s)
      | Ok json =>
          match JournaledStorage.begin_transaction drawn s with
          | (Err e, s) =>
              (Err (str "Failed to begin boot profile save transaction: "
                    ++ utf8_text (TransactionError.display e)), Some s)
          | (Ok tx, s) =>
              match JournaledStorage.write version boot_profile_object_id (Utf8.as_bytes json) (tx, s) with
              | (Err e, (_, s)) =>
                  (Err (str "Failed to write boot profile to storage: " ++ utf8_text (TransactionError.display e)),
                   Some s)
              | (Ok _, ts) =>
                  match JournaledStorage.commit ts with
                  | (Err e, (_, s)) =>
                      (Err (str "Failed to commit boot profile save transaction: "
                            ++ utf8_text (TransactionError.display e)), Some s)
                  | (Ok _, (_, s)) => (Ok tt, Some s)
                  end
              end
          end
      end
  end.
End with_json.
End BootProfileManager.

(** ** Components ([lib.rs]) *)

Module EditorIoContext.
(* services_workspace_manager/src/lib.rs:158-163 EditorIoContext *)
Record t := mk {
  storage : JournaledStorage.t;
  fs_view : option FileSystemViewService.t;
  root : option DirectoryView.t
}.
#[global] Instance rebuild_t : Rebuild t := λ c, mk (storage c) (fs_view c) (root c).
(* services_workspace_manager/src/lib.rs:166-172 EditorIoContext::new *)
Definition new (s : JournaledStorage.t) : t := mk s None None.
(* services_workspace_manager/src/lib.rs:174-184 EditorIoContext::with_fs_view *)
Definition with_fs_view (s : JournaledStorage.t) (fs : FileSystemViewService.t) (root : DirectoryView.t) : t :=
  mk s (Some fs) (Some root).
(** Both the view and the root. *)
Definition files (c : t) : option (FileSystemViewService.t * DirectoryView.t) :=
  match fs_view c, root c with Some fs, Some root => Some (fs, root) | _, _ => None end.
End EditorIoContext.

Module ComponentInfo.
(* services_workspace_manager/src/lib.rs:224-250 ComponentInfo *)
Record t := mk {
  id : ComponentId.t;
  component_type : ComponentType.t;
  identity : IdentityMetadata.t;
  state : ComponentState.t;
  focusable : bool;
  subscription : option InputSubscriptionCap.t;
  cancellation : CancellationSource.t;
  exit_reason : option ExitReason.t;
  name : Str.t;
  metadata : gmap Str.t Str.t;
  main_view : option ViewHandleCap.t;
  status_view : option ViewHandleCap.t
}.
#[global] Instance rebuild_t : Rebuild t := λ c,
  mk (id c) (component_type c) (identity c) (state c) (focusable c) (subscription c) (cancellation c)
     (exit_reason c) (name c) (metadata c) (main_view c) (status_view c).
(** [drawn] is the identifier; the source of cancellation is a new cell. *)
(* services_workspace_manager/src/lib.rs:254-274 ComponentInfo::new *)
Definition new (drawn : ComponentId.t) (source : CancellationSource.t) (ty : ComponentType.t)
    (identity : IdentityMetadata.t) (focusable : bool) (name : Str.t) : t :=
  mk drawn ty identity ComponentState.Running focusable None source None name ∅ None None.
(* services_workspace_manager/src/lib.rs:277-280 ComponentInfo::with_metadata *)
Definition with_metadata (key value : Str.t) (c : t) : t := c <| metadata ::= <[key := value]> |>.
(* services_workspace_manager/src/lib.rs:283-286 ComponentInfo::with_subscription *)
Definition with_subscription (s : InputSubscriptionCap.t) (c : t) : t := c <| subscription := Some s |>.
(* services_workspace_manager/src/lib.rs:289-292 ComponentInfo::with_main_view *)
Definition with_main_view (h : ViewHandleCap.t) (c : t) : t := c <| main_view := Some h |>.
(* services_workspace_manager/src/lib.rs:295-298 ComponentInfo::with_status_view *)
Definition with_status_view (h : ViewHandleCap.t) (c : t) : t := c <| status_view := Some h |>.
(* services_workspace_manager/src/lib.rs:301-303 ComponentInfo::cancellation_token *)
Definition cancellation_token (c : t) : CancellationToken.t := CancellationSource.token (cancellation c).
(* services_workspace_manager/src/lib.rs:306-308 ComponentInfo::is_running *)
Definition is_running (c : t) : bool := bool_decide (state c = ComponentState.Running).
(* services_workspace_manager/src/lib.rs:311-317 ComponentInfo::has_focus *)
Definition has_focus (m : FocusManager.t) (c : t) : bool :=
  match subscription c with Some sub => FocusManager.has_focus sub m | None => false end.
(** Whether it holds this subscription. *)
Definition subscribed (sub : N) (c : t) : bool :=
  match subscription c with Some s => InputSubscriptionCap.id s =? sub | None => false end.
(** Both views. *)
Definition views (c : t) : option (ViewHandleCap.t * ViewHandleCap.t) :=
  match main_view c, status_view c with Some m, Some s => Some (m, s) | _, _ => None end.
End ComponentInfo.

Module WorkspaceEvent.
(* services_workspace_manager/src/lib.rs:569-601 WorkspaceEvent *)
Inductive t :=
| ComponentLaunched (id : ComponentId.t) (ty : ComponentType.t) (execution_id : ExecutionId.t) (timestamp_ns : N)
| ComponentStateChanged (id : ComponentId.t) (old_state new_state : ComponentState.t) (timestamp_ns : N)
| ComponentFocused (id : ComponentId.t) (timestamp_ns : N)
| ComponentUnfocused (id : ComponentId.t) (timestamp_ns : N)
| ComponentTerminated (id : ComponentId.t) (reason : ExitReason.t) (timestamp_ns : N).
End WorkspaceEvent.

Module LaunchConfig.
(* services_workspace_manager/src/lib.rs:744-760 LaunchConfig *)
Record t := mk {
  component_type : ComponentType.t;
  name : Str.t;
  identity_kind : IdentityKind.t;
  trust_domain : TrustDomain.t;
  focusable : bool;
  budget : option ResourceBudget.t;
  metadata : gmap Str.t Str.t
}.
#[global] Instance rebuild_t : Rebuild t := λ c,
  mk (component_type c) (name c) (identity_kind c) (trust_domain c) (focusable c) (budget c) (metadata c).
(* services_workspace_manager/src/lib.rs:764-779 LaunchConfig::new *)
Definition new (ty : ComponentType.t) (name : Str.t) (kind : IdentityKind.t) (domain : TrustDomain.t) : t :=
  mk ty name kind domain true None ∅.
(* services_workspace_manager/src/lib.rs:782-785 LaunchConfig::with_focusable *)
Definition with_focusable (b : bool) (c : t) : t := c <| focusable := b |>.
(* services_workspace_manager/src/lib.rs:788-791 LaunchConfig::with_budget *)
Definition with_budget (b : ResourceBudget.t) (c : t) : t := c <| budget := Some b |>.
(* services_workspace_manager/src/lib.rs:794-797 LaunchConfig::with_metadata *)
Definition with_metadata (key value : Str.t) (c : t) : t := c <| metadata ::= <[key := value]> |>.
End LaunchConfig.

Module PackageLaunchFailure.
(* services_workspace_manager/src/lib.rs:723-729 PackageLaunchFailure *)
Record t := mk {
  component_name : Str.t; component_type : ComponentType.t; entry : Str.t; error : WorkspaceError.t
}.
End PackageLaunchFailure.

Module PackageLaunchReport.
(* services_workspace_manager/src/lib.rs:732-736 PackageLaunchReport *)
Record t := mk { created_component_ids : list ComponentId.t; failures : list PackageLaunchFailure.t }.
#[global] Instance rebuild_t : Rebuild t := λ r, mk (created_component_ids r) (failures r).
(* services_workspace_manager/src/lib.rs:739-741 PackageLaunchReport::is_success *)
Definition is_success (r : t) : bool := bool_decide (length (failures r) = 0%nat).
End PackageLaunchReport.

Module ComponentInstance.
(* services_workspace_manager/src/lib.rs:1346-1361 ComponentInstance *)
Inductive t :=
| Editor (e : ViEditor.t StorageEditorIo.t)
| Cli (c : InlineConsole.t)
| FilePicker (p : FilePicker.t)
| Pipeline (r : PipelineRuntime.t)
| Custom (r : CustomComponentRuntime.t).
End ComponentInstance.

Module KeyRoutingDebug.
(* services_workspace_manager/src/lib.rs:1364-1373 KeyRoutingDebug *)
Record t := mk {
  last_key_event : option KeyEvent.t;
  last_routed_to : option ComponentId.t;
  consumed_by_global : bool
}.
#[global] Instance rebuild_t : Rebuild t := λ d, mk (last_key_event d) (last_routed_to d) (consumed_by_global d).
(* services_workspace_manager/src/lib.rs:1377-1383 KeyRoutingDebug::new *)
Definition new : t := mk None None false.
End KeyRoutingDebug.

Module ComponentSummary.
(* services_workspace_manager/src/commands.rs:86-94 ComponentSummary *)
Record t := mk {
  id : ComponentId.t; component_type : ComponentType.t; name : Str.t; state : ComponentState.t;
  focusable : bool; has_focus : bool
}.
End ComponentSummary.

Module CommandResult.
(* services_workspace_manager/src/commands.rs:62-83 CommandResult *)
Inductive t :=
| Opened (id : ComponentId.t) (name : Str.t)
| ListOf (components : list ComponentSummary.t)
| FocusChanged (id : ComponentId.t)
| Closed (id : ComponentId.t)
| Status (summary : ComponentSummary.t)
| FocusInfo (id : option ComponentId.t)
| Success (message : Str.t)
| Error (message : Str.t).
End CommandResult.

(** ** The manager *)

Module WorkspaceManager.
(* services_workspace_manager/src/lib.rs:1390-1434 WorkspaceManager *)
Record t := mk {
  components : gmap ComponentId.t ComponentInfo.t;
  component_instances : gmap ComponentId.t ComponentInstance.t;
  focus_manager : FocusManager.t;
  view_host : ViewHost.t;
  view_subscriptions : gmap ViewId.t ViewSubscriptionCap.t;
  key_binding_manager : KeyBindingManager.t;
  policy : option PolicyEngine.t;
  audit_trail : list WorkspaceEvent.t;
  next_timestamp : N;
  workspace_identity : IdentityMetadata.t;
  editor_io_context : option EditorIoContext.t;
  key_routing_debug : KeyRoutingDebug.t;
  workspace_status : WorkspaceStatus.t;
  recent_history : RecentHistory.t;
  breadcrumbs : ContextBreadcrumbs.t;
  window_layout : WindowLayoutState.t;
  command_palette : CommandPalette.t;
  custom_component_registry : CustomComponentRegistry.t;
  settings_registry : SettingsRegistry.t;
  current_user : Str.t;
  boot_profile_manager : BootProfileManager.t;
  cancellation_cells : cells;
  drawn : nat
}.
#[global] Instance rebuild_t : Rebuild t := λ w,
  mk (components w) (component_instances w) (focus_manager w) (view_host w) (view_subscriptions w)
     (key_binding_manager w) (policy w) (audit_trail w) (next_timestamp w) (workspace_identity w)
     (editor_io_context w) (key_routing_debug w) (workspace_status w) (recent_history w) (breadcrumbs w)
     (window_layout w) (command_palette w) (custom_component_registry w) (settings_registry w)
     (current_user w) (boot_profile_manager w) (cancellation_cells w) (drawn w).
(* services_workspace_manager/src/lib.rs:1438-1463 WorkspaceManager::new *)
Definition new (identity : IdentityMetadata.t) : t :=
  mk ∅ ∅ FocusManager.new ViewHost.new ∅ KeyBindingManager.new None [] 0 identity None KeyRoutingDebug.new
     WorkspaceStatus.new RecentHistory.new ContextBreadcrumbs.new WindowLayoutState.new build_command_registry
     CustomComponentRegistry.with_defaults create_default_registry (str "default") BootProfileManager.new [] 0.
(* services_workspace_manager/src/lib.rs:1472-1475 WorkspaceManager::with_policy *)
Definition with_policy (p : PolicyEngine.t) (w : t) : t := w <| policy := Some p |>.
(** What the status strip shows last. *)
Definition last_action (s : Str.t) (w : t) : t := w <| workspace_status ::= WorkspaceStatus.set_last_action s |>.
(* services_workspace_manager/src/lib.rs:2959-2963 WorkspaceManager::next_timestamp *)
Definition take_timestamp (w : t) : outcome (N * t) :=
  let ts := next_timestamp w in
  next ← add_u64 ts 1;
  Return (ts, w <| next_timestamp := next |>).

(** The address of a text in a [gmap string string]. *)
Definition utf8_map (m : gmap Str.t Str.t) : gmap string string :=
  list_to_map ((λ kv, (utf8_string kv.1, utf8_string kv.2)) <$> map_to_list m).
(* services_focus_manager/src/lib.rs:26-39 FocusError (Display) *)
Definition display_focus_error (e : FocusError.t) : string :=
  match e with
  | FocusError.FocusDenied reason => "Focus denied: " +:+ reason
  | FocusError.NoFocus => "No focused subscription"
  | FocusError.SubscriptionNotFound => "Subscription not found in focus stack"
  | FocusError.EmptyStack => "Focus stack empty"
  end.
(* services_workspace_manager/src/lib.rs:644-648 From<FocusError> for WorkspaceError *)
Definition from_focus_error (e : FocusError.t) : WorkspaceError.t :=
  WorkspaceError.FocusError (utf8_text (display_focus_error e)).

Section manager.
Context `{HashOrder} `{UuidText} `{Lowercase} `{DefaultHasher} `{StageCodec} `{HandlerCodec}.
Context `{SettingsJson} `{BootJson} `{StdFormat} (uuids reply_ids : nat → Uuid).

Definition draw (w : t) : Uuid * t := (uuids (drawn w), w <| drawn ::= S |>).
(** The four identifiers that an operation of the editor may draw. *)
Definition draw_editor (w : t) : Draws.t * t :=
  let n := drawn w in
  (Draws.mk (TransactionId.mk (uuids n)) (ObjectId.from_uuid (uuids (n + 1)%nat))
     (VersionId.from_uuid (uuids (n + 2)%nat)) (ObjectId.from_uuid (uuids (n + 3)%nat)),
   w <| drawn := (n + 4)%nat |>).
(* services_workspace_manager/src/lib.rs:1466-1469 WorkspaceManager::set_editor_io_context *)
Definition set_editor_io_context (context : EditorIoContext.t) (w : t) : t :=
  let '(u, w) := draw w in
  let '(_, (m, s)) := BootProfileManager.load (TransactionId.mk u) (Some (EditorIoContext.storage context))
                        (boot_profile_manager w) in
  let context := context <| EditorIoContext.storage := default (EditorIoContext.storage context) s |> in
  w <| boot_profile_manager := m |> <| editor_io_context := Some context |>.

(** *** Focus *)

(** The policy's answer when it refuses. *)
Definition refusal (event : PolicyEvent.t) (context : PolicyContext.t) (w : t) : option Str.t :=
  match policy w with
  | None => None
  | Some p =>
      match PolicyEngine.evaluate p event context with
      | PolicyDecision.Deny reason => Some (utf8_text reason)
      | _ => None
      end
  end.
(* services_workspace_manager/src/lib.rs:1808-1849 WorkspaceManager::focus_component *)
Definition focus_component (id : ComponentId.t) (w : t) : outcome (result unit WorkspaceError.t * t) :=
  match components w !! id with
  | None => Return (Err (WorkspaceError.ComponentNotFound id), w)
  | Some component =>
      if negb (ComponentInfo.focusable component) then Return (Err (WorkspaceError.NotFocusable id), w)
      else
        match ComponentInfo.subscription component with
        | None => Return (Err (WorkspaceError.NotFocusable id), w)
        | Some subscription =>
            let context := PolicyContext.for_capability_delegation (workspace_identity w)
                             (ComponentInfo.identity component) (InputSubscriptionCap.id subscription) in
            match refusal PolicyEvent.OnCapabilityDelegate context w with
            | Some reason => Return (Err (WorkspaceError.FocusDenied reason), w)
            | None =>
                '(r, m) ← FocusManager.request_focus subscription (focus_manager w);
                let w := w <| focus_manager := m |> in
                match r with
                | Err e => Return (Err (from_focus_error e), w)
                | Ok _ =>
                    let w := w <| window_layout ::= λ l, (WindowLayoutState.set_focused_component id l).2 |> in
                    '(timestamp, w) ← take_timestamp w;
                    Return (Ok tt, w <| audit_trail ::= λ l, l ++ [WorkspaceEvent.ComponentFocused id timestamp] |>)
                end
            end
        end
  end.
(** The component that holds a subscription, in the order of the map. *)
Definition find_subscribed (sub : InputSubscriptionCap.t) (w : t) : option ComponentInfo.t :=
  snd <$> list_find (λ c, ComponentInfo.subscribed (InputSubscriptionCap.id sub) c = true)
            (hm_values (components w)).
(* services_workspace_manager/src/lib.rs:2086-2099 WorkspaceManager::get_focused_component *)
Definition get_focused_component (w : t) : option ComponentId.t :=
  sub ← FocusManager.current_focus (focus_manager w);
  ComponentInfo.id <$> find_subscribed sub w.
(* services_workspace_manager/src/lib.rs:1851-1856 WorkspaceManager::is_focusable_running_component *)
Definition is_focusable_running_component (id : ComponentId.t) (w : t) : bool :=
  match components w !! id with
  | Some c => ComponentInfo.is_running c && ComponentInfo.focusable c
  | None => false
  end.
(** The loops that push each suitable component once. *)
Definition push_new (w : t) (ordered : list ComponentId.t) (id : ComponentId.t) : list ComponentId.t :=
  if bool_decide (id ∈ ordered) then ordered
  else if is_focusable_running_component id w then ordered ++ [id] else ordered.
Definition id_leb (a b : ComponentId.t) : bool := Utf8.leb (component_id_display a) (component_id_display b).
(* services_workspace_manager/src/lib.rs:1858-1885 WorkspaceManager::ordered_focusable_components *)
Definition ordered_focusable_components (w : t) : list ComponentId.t :=
  let ordered := foldl (push_new w) [] (WindowLayoutState.tiles (window_layout w) ≫= WindowTileState.tabs) in
  let remaining :=
    filter (λ id, id ∉ ordered)
      (ComponentInfo.id <$> filter (λ c, ComponentInfo.is_running c && ComponentInfo.focusable c = true)
                              (hm_values (components w))) in
  ordered ++ stable_sort id_leb remaining.
(* services_workspace_manager/src/lib.rs:1887-1907 WorkspaceManager::ordered_visible_focusable_components *)
Definition ordered_visible_focusable_components (w : t) : list ComponentId.t :=
  match foldl (push_new w) [] (omap WindowTileState.active_component (WindowLayoutState.tiles (window_layout w))) with
  | [] => ordered_focusable_components w
  | ordered => ordered
  end.
(* services_workspace_manager/src/lib.rs:1909-1935 WorkspaceManager::cycle_focus_in_order *)
Definition cycle_focus_in_order (ordered : list ComponentId.t) (forward : bool) (w : t)
    : outcome (result unit WorkspaceError.t * t) :=
  match ordered with
  | [] => Return (Err WorkspaceError.NoComponents, w)
  | _ =>
      let n := length ordered in
      let index :=
        match get_focused_component w with
        | Some current =>
            let current_pos := default 0%nat (position current ordered) in
            if forward then ((current_pos + 1) mod n)%nat
            else if (current_pos =? 0)%nat then (n - 1)%nat else (current_pos - 1)%nat
        | None => if forward then 0%nat else (n - 1)%nat
        end in
      target ← expect (ordered !! index);
      focus_component target w
  end.
(* services_workspace_manager/src/lib.rs:1938-1940 WorkspaceManager::focus_next *)
Definition focus_next (w : t) := cycle_focus_in_order (ordered_focusable_components w) true w.
(* services_workspace_manager/src/lib.rs:1943-1945 WorkspaceManager::focus_previous *)
Definition focus_previous (w : t) := cycle_focus_in_order (ordered_focusable_components w) false w.
(* services_workspace_manager/src/lib.rs:1948-1950 WorkspaceManager::focus_next_tile *)
Definition focus_next_tile (w : t) := cycle_focus_in_order (ordered_visible_focusable_components w) true w.
(* services_workspace_manager/src/lib.rs:1953-1955 WorkspaceManager::focus_previous_tile *)
Definition focus_previous_tile (w : t) := cycle_focus_in_order (ordered_visible_focusable_components w) false w.
(** The tab that the layout turns to is focused when it can be; else the focus moves on. *)
Definition focus_tab (turn : WindowLayoutState.t → option ComponentId.t * WindowLayoutState.t)
    (otherwise : t → outcome (result unit WorkspaceError.t * t)) (w : t)
    : outcome (result unit WorkspaceError.t * t) :=
  let '(candidate, l) := turn (window_layout w) in
  let w := w <| window_layout := l |> in
  match candidate with
  | Some id => if is_focusable_running_component id w then focus_component id w else otherwise w
  | None => otherwise w
  end.
(* services_workspace_manager/src/lib.rs:1958-1966 WorkspaceManager::focus_next_tab *)
Definition focus_next_tab : t → outcome (result unit WorkspaceError.t * t) :=
  focus_tab WindowLayoutState.focus_next_tab focus_next.
(* services_workspace_manager/src/lib.rs:1969-1977 WorkspaceManager::focus_previous_tab *)
Definition focus_previous_tab : t → outcome (result unit WorkspaceError.t * t) :=
  focus_tab WindowLayoutState.focus_previous_tab focus_previous.
(* services_workspace_manager/src/lib.rs:1983-1991 WorkspaceManager::split_focused_tile *)
Definition split_focused_tile (axis : SplitAxis.t) (w : t) : outcome (result unit WorkspaceError.t * t) :=
  let w := w <| window_layout ::= WindowLayoutState.split_focused_tile axis |> in
  match WindowLayoutState.focused_active_component (window_layout w) with
  | Some id =>
      if is_focusable_running_component id w then '(_, w) ← focus_component id w; Return (Ok tt, w)
      else Return (Ok tt, w)
  | None => Return (Ok tt, w)
  end.

(** *** Launching *)

(* services_workspace_manager/src/lib.rs:1727-1746 WorkspaceManager::validate_launch_config *)
Definition validate_launch_config (config : LaunchConfig.t) (w : t) : result unit WorkspaceError.t :=
  let missing reason := Err (WorkspaceError.MissingLaunchContext ComponentType.FilePicker (str reason)) in
  match LaunchConfig.component_type config with
  | ComponentType.FilePicker =>
      match editor_io_context w with
      | None => missing "storage context unavailable"
      | Some context =>
          match EditorIoContext.root context with
          | None => missing "root directory context unavailable"
          | Some _ => Ok tt
          end
      end
  | _ => Ok tt
  end.
(** A view of the component and the workspace's subscription to it; the errors of the host become
    errors of the command. *)
(* services_workspace_manager/src/lib.rs:1542-1562 WorkspaceManager::launch_component *)
Definition open_view (kind : ViewKind.t) (title : Str.t) (which : string) (owner workspace : TaskId.t) (w : t)
    : outcome (result ViewHandleCap.t WorkspaceError.t * t) :=
  let failed (what : string) (e : ViewHostError.t) :=
    WorkspaceError.InvalidCommand (str ("Failed to " +:+ what +:+ " " +:+ which +:+ " view: ")
                                   ++ ViewHostError.display e) in
  let '(channel, w) := draw w in
  let '(view, w) := draw w in
  '(r, host) ← ViewHost.create_view (ViewId.mk view) kind (Some title) owner (ChannelId.mk channel) (view_host w);
  let w := w <| view_host := host |> in
  match r with
  | Err e => Return (Err (failed "create" e), w)
  | Ok handle =>
      let '(channel, w) := draw w in
      '(r, host) ← ViewHost.subscribe (ViewHandleCap.view_id handle) workspace (ChannelId.mk channel) (view_host w);
      let w := w <| view_host := host |> in
      match r with
      | Err e => Return (Err (failed "subscribe to" e), w)
      | Ok sub => Return (Ok handle, w <| view_subscriptions ::= <[ViewHandleCap.view_id handle := sub]> |>)
      end
  end.
(** An input subscription, whose identifier is the timestamp. *)
(* services_workspace_manager/src/lib.rs:1526-1533 WorkspaceManager::launch_component *)
Definition subscribe_input (component : ComponentInfo.t) (w : t) : outcome (ComponentInfo.t * t) :=
  '(ts, w) ← take_timestamp w;
  let '(task, w) := draw w in
  let '(channel, w) := draw w in
  Return (ComponentInfo.with_subscription (InputSubscriptionCap.new ts (TaskId.mk task) (ChannelId.mk channel))
            component, w).
(** The views of a console. *)
Definition publish_console (views : option (ViewHandleCap.t * ViewHandleCap.t)) (timestamp : N)
    (id : ComponentId.t) (label : string) (c : InlineConsole.t) (w : t) : outcome (InlineConsole.t * t) :=
  match views with
  | Some (main_view, status_view) =>
      '(c, host) ← InlineConsole.publish_views (view_host w) main_view status_view timestamp id label c;
      Return (c, w <| view_host := host |>)
  | None => Return (c, w)
  end.
(** The editor gets a copy of the storage and of the file-system view. *)
(* services_workspace_manager/src/lib.rs:1596-1628 WorkspaceManager::launch_component *)
Definition new_editor (component : ComponentInfo.t) (w : t) : ViEditor.t StorageEditorIo.t * t :=
  let editor := ViEditor.new in
  let editor :=
    match ComponentInfo.views component with
    | Some (main_view, status_view) => ViEditor.set_view_handles main_view status_view editor
    | None => editor
    end in
  match editor_io_context w with
  | None => (editor, w)
  | Some context =>
      let io := match EditorIoContext.files context with
                | Some (fs, root) => StorageEditorIo.with_fs_view (EditorIoContext.storage context) fs root
                | None => StorageEditorIo.new (EditorIoContext.storage context)
                end in
      let editor := ViEditor.set_io io editor in
      let metadata := ComponentInfo.metadata component in
      let path := match metadata !! str "path" with Some p => Some p | None => metadata !! str "arg0" end in
      match path with
      | Some (_ :: _ as path) =>
          let '(d, w) := draw_editor w in
          ((ViEditor.open_with d (OpenOptions.with_path path OpenOptions.new) editor).2, w)
      | _ => (editor, w)
      end
  end.
(* services_workspace_manager/src/lib.rs:1594-1702 WorkspaceManager::launch_component *)
Definition new_instance (component : ComponentInfo.t) (timestamp : N) (w : t) : outcome (ComponentInstance.t * t) :=
  let id := ComponentInfo.id component in
  let views := ComponentInfo.views component in
  match ComponentInfo.component_type component with
  | ComponentType.Editor => let '(e, w) := new_editor component w in Return (ComponentInstance.Editor e, w)
  | ComponentType.Cli =>
      '(c, w) ← publish_console views timestamp id "CLI"
                  (InlineConsole.new (str "pg> ") [str "PandaGen CLI ready"; str "Type `help` for built-in hints"]) w;
      Return (ComponentInstance.Cli c, w)
  | ComponentType.FilePicker =>
      root ← expect (editor_io_context w ≫= EditorIoContext.root);
      Return (ComponentInstance.FilePicker (FilePicker.new root), w)
  | ComponentType.PipelineExecutor =>
      let '(channel, w) := draw w in
      r ← PipelineRuntime.new (ChannelId.mk channel);
      '(c, w) ← publish_console views timestamp id "PIPELINE" (PipelineRuntime.console r) w;
      Return (ComponentInstance.Pipeline (r <| PipelineRuntime.console := c |>), w)
  | ComponentType.Custom =>
      let metadata := utf8_map (ComponentInfo.metadata component) in
      let descriptor := CustomComponentRegistry.resolve metadata (custom_component_registry w) in
      let r := CustomComponentRuntime.new descriptor (utf8_string (ComponentInfo.name component)) metadata in
      '(c, w) ← publish_console views timestamp id "CUSTOM" (CustomComponentRuntime.console r) w;
      Return (ComponentInstance.Custom (r <| CustomComponentRuntime.console := c |>), w)
  end.
(** The identity of a new component. *)
(* services_workspace_manager/src/lib.rs:1490-1500 WorkspaceManager::launch_component *)
Definition new_identity (kind : IdentityKind.t) (domain : TrustDomain.t) (name : Str.t)
    (budget : option ResourceBudget.t) (timestamp : N) (w : t) : IdentityMetadata.t * t :=
  let '(u, w) := draw w in
  let identity :=
    IdentityMetadata.with_parent (IdentityMetadata.execution_id (workspace_identity w))
      (IdentityMetadata.new (ExecutionId.mk u) kind domain (utf8_string name) timestamp) in
  (match budget with Some b => IdentityMetadata.with_budget b identity | None => identity end, w).
(** The record of a new component, with its cell. *)
(* services_workspace_manager/src/lib.rs:1514-1523 WorkspaceManager::launch_component *)
Definition new_component (ty : ComponentType.t) (identity : IdentityMetadata.t) (focusable : bool) (name : Str.t)
    (metadata : gmap Str.t Str.t) (w : t) : ComponentInfo.t * t :=
  let '(u, w) := draw w in
  let '(source, c) := CancellationSource.new (cancellation_cells w) in
  let component := ComponentInfo.new (ComponentId.mk u) source ty identity focusable name in
  (foldl (λ c kv, ComponentInfo.with_metadata kv.1 kv.2 c) component (hm_iter metadata),
   w <| cancellation_cells := c |>).
(** From the views to the entry in the tables. *)
(* services_workspace_manager/src/lib.rs:1535-1724 WorkspaceManager::launch_component *)
Definition start_component (component : ComponentInfo.t) (timestamp : N) (w : t)
    : outcome (result ComponentId.t WorkspaceError.t * t) :=
  let name := ComponentInfo.name component in
  let '(task, w) := draw w in
  let '(workspace, w) := draw w in
  try! main_view, w := open_view ViewKind.TextBuffer name "main" (TaskId.mk task) (TaskId.mk workspace) w in
  let component := ComponentInfo.with_main_view main_view component in
  try! status_view, w := open_view ViewKind.StatusLine (name ++ str " - status") "status"
                           (TaskId.mk task) (TaskId.mk workspace) w in
  let component := ComponentInfo.with_status_view status_view component in
  let id := ComponentInfo.id component in
  '(instance, w) ← new_instance component timestamp w;
  let w := w <| audit_trail ::= λ l, l ++ [WorkspaceEvent.ComponentLaunched id
                  (ComponentInfo.component_type component)
                  (IdentityMetadata.execution_id (ComponentInfo.identity component)) timestamp] |> in
  let w := w <| components ::= <[id := component]> |> <| component_instances ::= <[id := instance]> |>
             <| window_layout ::= WindowLayoutState.add_component_tab id |> in
  if ComponentInfo.focusable component then '(_, w) ← focus_component id w; Return (Ok id, w)
  else Return (Ok id, w).
(* services_workspace_manager/src/lib.rs:1481-1725 WorkspaceManager::launch_component *)
Definition launch_component (config : LaunchConfig.t) (w : t) : outcome (result ComponentId.t WorkspaceError.t * t) :=
  match validate_launch_config config w with
  | Err e => Return (Err e, w)
  | Ok _ =>
      '(timestamp, w) ← take_timestamp w;
      let '(identity, w) :=
        new_identity (LaunchConfig.identity_kind config) (LaunchConfig.trust_domain config)
          (LaunchConfig.name config) (LaunchConfig.budget config) timestamp w in
      match refusal PolicyEvent.OnSpawn (PolicyContext.for_spawn (workspace_identity w) identity) w with
      | Some reason => Return (Err (WorkspaceError.LaunchDenied reason), w)
      | None =>
          let '(component, w) :=
            new_component (LaunchConfig.component_type config) identity (LaunchConfig.focusable config)
              (LaunchConfig.name config) (LaunchConfig.metadata config) w in
          '(component, w) ← (if LaunchConfig.focusable config then subscribe_input component w
                             else Return (component, w));
          start_component component timestamp w
      end
  end.
(* services_workspace_manager/src/lib.rs:1765-1770 WorkspaceManager::launch_package *)
Definition package_component_type (ty : PackageComponentType.t) : ComponentType.t :=
  match ty with
  | PackageComponentType.Editor => ComponentType.Editor
  | PackageComponentType.Cli => ComponentType.Cli
  | PackageComponentType.PipelineExecutor => ComponentType.PipelineExecutor
  | PackageComponentType.Custom => ComponentType.Custom
  end.
(* services_workspace_manager/src/lib.rs:1774-1791 WorkspaceManager::launch_package *)
Definition package_config (manifest : PackageManifest.t) (spec : ComponentLaunchSpec.t) : LaunchConfig.t :=
  let config :=
    LaunchConfig.with_metadata (str "package.entry") (ComponentLaunchSpec.entry spec)
      (LaunchConfig.with_metadata (str "package.version") (PackageManifest.version manifest)
        (LaunchConfig.with_metadata (str "package.name") (PackageManifest.name manifest)
          (LaunchConfig.with_focusable (ComponentLaunchSpec.focusable spec)
            (LaunchConfig.new (package_component_type (ComponentLaunchSpec.component_type spec))
               (ComponentLaunchSpec.name spec) IdentityKind.Component TrustDomain.user)))) in
  let config :=
    match ComponentLaunchSpec.budget spec with
    | Some b => LaunchConfig.with_budget b config
    | None => config
    end in
  foldl (λ c kv, LaunchConfig.with_metadata kv.1 kv.2 c) config (hm_iter (ComponentLaunchSpec.metadata spec)).
(** The loop over the plan. *)
(* services_workspace_manager/src/lib.rs:1764-1802 WorkspaceManager::launch_package *)
Fixpoint launch_all (manifest : PackageManifest.t) (plan : list ComponentLaunchSpec.t)
    (report : PackageLaunchReport.t) (w : t) : outcome (PackageLaunchReport.t * t) :=
  match plan with
  | [] => Return (report, w)
  | spec :: plan =>
      '(r, w) ← launch_component (package_config manifest spec) w;
      let report :=
        match r with
        | Ok id => report <| PackageLaunchReport.created_component_ids ::= λ l, l ++ [id] |>
        | Err error =>
            report <| PackageLaunchReport.failures ::= λ l, l ++
              [PackageLaunchFailure.mk (ComponentLaunchSpec.name spec)
                 (package_component_type (ComponentLaunchSpec.component_type spec))
                 (ComponentLaunchSpec.entry spec) error] |>
        end in
      launch_all manifest plan report w
  end.
(** [describe] is the text of a manifest error ([thiserror]). *)
(* services_workspace_manager/src/lib.rs:1751-1805 WorkspaceManager::launch_package *)
Definition launch_package (describe : PackageError.t → Str.t) (manifest : PackageManifest.t) (w : t)
    : outcome (result PackageLaunchReport.t WorkspaceError.t * t) :=
  match ComponentLoader.build_launch_plan manifest with
  | Err err => Return (Err (WorkspaceError.InvalidCommand (str "Package manifest error: " ++ describe err)), w)
  | Ok plan => '(report, w) ← launch_all manifest plan (PackageLaunchReport.mk [] []) w; Return (Ok report, w)
  end.

(** *** Terminating *)

(* services_workspace_manager/src/lib.rs:2029-2042 WorkspaceManager::terminate_component *)
Definition exit_state (reason : ExitReason.t) : ComponentState.t * CancellationReason.t :=
  match reason with
  | ExitReason.Normal => (ComponentState.Exited, CancellationReason.UserCancel)
  | ExitReason.Cancelled _ => (ComponentState.Cancelled, CancellationReason.SupervisorCancel)
  | ExitReason.Timeout => (ComponentState.Failed, CancellationReason.Timeout)
  | ExitReason.Failure _ => (ComponentState.Failed, CancellationReason.DependencyFailed)
  end.
(** A view goes with its subscription. *)
Definition close_view (handle : option ViewHandleCap.t) (w : t) : t :=
  match handle with
  | Some h => w <| view_host ::= λ v, (ViewHost.remove_view h v).2 |>
                <| view_subscriptions ::= delete (ViewHandleCap.view_id h) |>
  | None => w
  end.
(* services_workspace_manager/src/lib.rs:2018-2073 WorkspaceManager::terminate_component *)
Definition terminate_component (id : ComponentId.t) (reason : ExitReason.t) (w : t)
    : outcome (result unit WorkspaceError.t * t) :=
  match components w !! id with
  | None => Return (Err (WorkspaceError.ComponentNotFound id), w)
  | Some component =>
      let '(state, cancel_reason) := exit_state reason in
      let component := component <| ComponentInfo.state := state |>
                                 <| ComponentInfo.exit_reason := Some reason |> in
      let w := w <| components ::= <[id := component]> |>
                 <| cancellation_cells ::= CancellationSource.cancel (ComponentInfo.cancellation component)
                                             cancel_reason |> in
      m ← match ComponentInfo.subscription component with
          | Some sub => '(_, m) ← FocusManager.remove_subscription sub (focus_manager w); Return m
          | None => Return (focus_manager w)
          end;
      let w := w <| focus_manager := m |> in
      let w := close_view (ComponentInfo.status_view component) (close_view (ComponentInfo.main_view component) w) in
      let w := w <| component_instances ::= delete id |>
                 <| window_layout ::= WindowLayoutState.remove_component id |> in
      '(timestamp, w) ← take_timestamp w;
      Return (Ok tt, w <| audit_trail ::= λ l, l ++ [WorkspaceEvent.ComponentTerminated id reason timestamp] |>)
  end.
(* services_workspace_manager/src/lib.rs:2944-2956 WorkspaceManager::handle_budget_exhaustion *)
Definition handle_budget_exhaustion (id : ComponentId.t) (w : t) : outcome (result unit WorkspaceError.t * t) :=
  terminate_component id (ExitReason.Failure "Resource budget exhausted") w.
(* services_workspace_manager/src/lib.rs:2076-2078 WorkspaceManager::list_components *)
Definition list_components (w : t) : list ComponentInfo.t := hm_values (components w).
(* services_workspace_manager/src/lib.rs:2081-2083 WorkspaceManager::get_component *)
Definition get_component (id : ComponentId.t) (w : t) : option ComponentInfo.t := components w !! id.

(** *** Settings and the boot profile *)

(* services_workspace_manager/src/lib.rs:3023-3026 WorkspaceManager::get_setting *)
Definition get_setting (key : Str.t) (w : t) : option SettingValue.t :=
  SettingsRegistry.get (current_user w) (SettingKey.new key) (settings_registry w).
(* services_workspace_manager/src/lib.rs:3050-3105 WorkspaceManager::apply_setting *)
Definition apply_setting (key : Str.t) (w : t) : t :=
  match get_setting key w with
  | None => w
  | Some value =>
      let says (text : option Str.t) := match text with Some s => last_action s w | None => w end in
      let enabled (what : string) :=
        says ((λ b : bool, str (what +:+ if b then "enabled" else "disabled")) <$> SettingValue.as_boolean value) in
      let named (what : string) := says ((λ s, str what ++ s) <$> SettingValue.as_string value) in
      let for_key k := bool_decide (SettingKey.new key = k) in
      if for_key Keys.UI_THEME then named "Theme set to: "
      else if for_key Keys.UI_SHOW_KEYBINDING_HINTS then enabled "Keybinding hints: "
      else if for_key Keys.EDITOR_TAB_SIZE then
        says ((λ i, str ("Tab size set to: " +:+ pretty i)) <$> SettingValue.as_integer value)
      else if for_key Keys.EDITOR_LINE_NUMBERS then enabled "Line numbers: "
      else if for_key Keys.KEYBINDINGS_PROFILE then named "Keybinding profile: "
      else w
  end.
(* services_workspace_manager/src/lib.rs:3029-3035 WorkspaceManager::set_setting *)
Definition set_setting (key : Str.t) (value : SettingValue.t) (w : t) : t :=
  apply_setting key
    (w <| settings_registry ::= SettingsRegistry.set_user_override (current_user w) (SettingKey.new key) value |>).
(* services_workspace_manager/src/lib.rs:3038-3047 WorkspaceManager::reset_setting *)
Definition reset_setting (key : Str.t) (w : t) : bool * t :=
  let '(result, s) := SettingsRegistry.reset_to_default (current_user w) (SettingKey.new key)
                        (settings_registry w) in
  let w := w <| settings_registry := s |> in
  (result, if result then apply_setting key w else w).
(* services_workspace_manager/src/lib.rs:103-103 SETTINGS_DIR_PATH *)
Definition SETTINGS_DIR_PATH : Str.t := str "settings".
(* services_workspace_manager/src/lib.rs:104-104 SETTINGS_OVERRIDES_PATH *)
Definition SETTINGS_OVERRIDES_PATH : Str.t := str "settings/user_overrides.json".
(* services_workspace_manager/src/lib.rs:3262-3264 WorkspaceManager::settings_object_id *)
Definition settings_object_id : ObjectId.t := ObjectId.from_uuid 0x9f2f51d43f8742f892d4e6f256afea20.
(* services_workspace_manager/src/lib.rs:3266-3280 WorkspaceManager::resolve_settings_object_for_read *)
Definition resolve_settings_object_for_read (c : EditorIoContext.t) : result (option ObjectId.t) Str.t :=
  match EditorIoContext.files c with
  | Some (fs, root) =>
      match FileSystemViewService.open root SETTINGS_OVERRIDES_PATH fs with
      | Ok id => Ok (Some id)
      | Err (OperationError.NotFound _) => Ok None
      | Err err => Err (str "Failed to resolve settings path " ++ SETTINGS_OVERRIDES_PATH ++ str ": "
                        ++ OperationError.display err)
      end
  | None => Ok (Some settings_object_id)
  end.
(** [drawn] is the identifier of a new directory. *)
(* services_workspace_manager/src/lib.rs:3282-3323 WorkspaceManager::resolve_settings_object_for_write *)
Definition resolve_settings_object_for_write (drawn : ObjectId.t) (c : EditorIoContext.t)
    : result ObjectId.t Str.t * EditorIoContext.t :=
  let failed (what : string) (path : Str.t) (err : OperationError.t) : result ObjectId.t Str.t :=
    Err (str "Failed to " ++ str what ++ path ++ str ": " ++ OperationError.display err) in
  match EditorIoContext.files c with
  | None => (Ok settings_object_id, c)
  | Some (fs, root) =>
      let with_files (rs : DirectoryView.t * FileSystemViewService.t) :=
        c <| EditorIoContext.root := Some rs.1 |> <| EditorIoContext.fs_view := Some rs.2 |> in
      match FileSystemViewService.open root SETTINGS_OVERRIDES_PATH fs with
      | Ok id => (Ok id, c)
      | Err (OperationError.NotFound _) =>
          let link rs :=
            match FileSystemViewService.link SETTINGS_OVERRIDES_PATH settings_object_id ObjectKind.Blob rs with
            | (Ok _, rs) => (Ok settings_object_id, with_files rs)
            | (Err (OperationError.AlreadyExists _), rs) =>
                (match FileSystemViewService.open rs.1 SETTINGS_OVERRIDES_PATH rs.2 with
                 | Ok id => Ok id
                 | Err err => Err (str "Failed to resolve settings path " ++ SETTINGS_OVERRIDES_PATH
                                   ++ str " after link race: " ++ OperationError.display err)
                 end, with_files rs)
            | (Err err, rs) => (failed "link settings path " SETTINGS_OVERRIDES_PATH err, with_files rs)
            end in
          match FileSystemViewService.mkdir drawn SETTINGS_DIR_PATH (root, fs) with
          | (Ok _, rs) => link rs
          | (Err (OperationError.AlreadyExists _), rs) => link rs
          | (Err err, rs) => (failed "create settings directory " SETTINGS_DIR_PATH err, with_files rs)
          end
      | Err err => (failed "resolve settings path " SETTINGS_OVERRIDES_PATH err, c)
      end
  end.
(** One transaction that writes the settings: an error before the commit returns at once, the outcome
    of the commit is looked at. *)
(* services_workspace_manager/src/lib.rs:3129-3142 WorkspaceManager::save_settings *)
Definition write_settings (tx : TransactionId.t) (version : VersionId.t) (o : ObjectId.t) (bytes : list N)
    (s : JournaledStorage.t) : result (result unit Str.t) Str.t * JournaledStorage.t :=
  let text (what : string) (e : TransactionError.t) : Str.t :=
    str ("Failed to " +:+ what) ++ utf8_text (TransactionError.display e) in
  match JournaledStorage.begin_transaction tx s with
  | (Err e, s) => (Err (text "start settings transaction: " e), s)
  | (Ok tx, s) =>
      match JournaledStorage.write version o bytes (tx, s) with
      | (Err e, (_, s)) => (Err (text "write settings: " e), s)
      | (Ok _, ts) =>
          let '(r, (_, s)) := JournaledStorage.commit ts in
          (Ok (map_err (text "commit settings: ") r), s)
      end
  end.
(* services_workspace_manager/src/lib.rs:3108-3158 WorkspaceManager::save_settings *)
Definition save_settings (w : t) : result unit Str.t * t :=
  let data := SettingsOverridesData.from_overrides (SettingsRegistry.export_overrides (settings_registry w)) in
  match serialize_overrides data with
  | Err e => (Err (str "Failed to serialize settings: " ++ PersistenceError.to_string e), w)
  | Ok bytes =>
      match editor_io_context w with
      | None => (Ok tt, last_action (str "Settings saved (in-memory only)") w)
      | Some context =>
          let '(d, w) := draw_editor w in
          let '(r, context) := resolve_settings_object_for_write (Draws.object d) context in
          let w := w <| editor_io_context := Some context |> in
          match r with
          | Err e => (Err e, w)
          | Ok object_id =>
              let '(r, s) := write_settings (Draws.tx d) (Draws.version d) object_id bytes
                               (EditorIoContext.storage context) in
              let w := w <| editor_io_context := Some (context <| EditorIoContext.storage := s |>) |> in
              match r with
              | Err e => (Err e, w)
              | Ok (Err e) => (Err e, last_action (str "Settings save failed: " ++ e) w)
              | Ok (Ok _) =>
                  (Ok tt, last_action (str ("Settings saved (" +:+ pretty (len bytes) +:+ " bytes) to ")
                                       ++ SETTINGS_OVERRIDES_PATH) w)
              end
          end
      end
  end.
(** The registry after loading, with the words about each key. *)
(* services_workspace_manager/src/lib.rs:3213-3231 WorkspaceManager::load_settings *)
Definition adopt_settings (bytes : list N) (w : t) : t :=
  let w := w <| settings_registry ::= SettingsRegistry.import_overrides
                  (SettingsOverridesData.to_overrides (load_overrides_safe bytes)) |> in
  let active_keys := SettingsRegistry.list_user_overrides (current_user w) (settings_registry w) in
  let w := foldl (λ w k, apply_setting (SettingKey.as_str k) w) w active_keys in
  if is_err (deserialize_overrides bytes)
  then last_action (str "Settings loaded with recovery (invalid data reset to defaults)") w
  else last_action (str ("Settings loaded (" +:+ pretty (len bytes) +:+ " bytes) from ")
                    ++ SETTINGS_OVERRIDES_PATH) w.
(* services_workspace_manager/src/lib.rs:3161-3234 WorkspaceManager::load_settings *)
Definition load_settings (w : t) : result unit Str.t * t :=
  let defaults w := (Ok tt, last_action (str "Settings loaded (defaults; no persisted overrides)") w) in
  match editor_io_context w with
  | None => (Ok tt, last_action (str "Settings loaded (no storage context)") w)
  | Some context =>
      match resolve_settings_object_for_read context with
      | Err e => (Err e, w)
      | Ok None => defaults w
      | Ok (Some object_id) =>
          let '(u, w) := draw w in
          let with_storage s := w <| editor_io_context := Some (context <| EditorIoContext.storage := s |>) |> in
          match JournaledStorage.begin_transaction (TransactionId.mk u) (EditorIoContext.storage context) with
          | (Err e, s) => (Err (str "Failed to start settings read transaction: "
                                ++ utf8_text (TransactionError.display e)), with_storage s)
          | (Ok tx, s) =>
              let read := JournaledStorage.read_data tx object_id s in
              let w := with_storage (JournaledStorage.rollback (tx, s)).2.2 in
              match read with
              | Err (TransactionError.ObjectNotFound _) => defaults w
              | Err err => (Err (str "Failed to read settings data: " ++ utf8_text (TransactionError.display err)), w)
              | Ok bytes => (Ok tt, adopt_settings bytes w)
              end
          end
      end
  end.
(* services_workspace_manager/src/lib.rs:3237-3239 WorkspaceManager::boot_profile_config *)
Definition boot_profile_config (w : t) : BootConfig.t := BootProfileManager.config (boot_profile_manager w).
(* services_workspace_manager/src/lib.rs:3242-3244 WorkspaceManager::set_boot_profile *)
Definition set_boot_profile (p : BootProfile.t) (w : t) : t :=
  w <| boot_profile_manager ::= BootProfileManager.set_profile p |>.
(** The storage of the context after a call that was given it. *)
Definition put_storage (s : option JournaledStorage.t) (w : t) : t :=
  w <| editor_io_context ::= λ c,
         c ← c; Some match s with Some s => c <| EditorIoContext.storage := s |> | None => c end |>.
(* services_workspace_manager/src/lib.rs:3247-3252 WorkspaceManager::load_boot_profile *)
Definition load_boot_profile (w : t) : result unit Str.t * t :=
  let '(u, w) := draw w in
  let '(r, (m, s)) := BootProfileManager.load (TransactionId.mk u)
                        (EditorIoContext.storage <$> editor_io_context w) (boot_profile_manager w) in
  (r, put_storage s (w <| boot_profile_manager := m |>)).
(* services_workspace_manager/src/lib.rs:3255-3260 WorkspaceManager::save_boot_profile *)
Definition save_boot_profile (w : t) : result unit Str.t * t :=
  let '(u, w) := draw w in
  let '(v, w) := draw w in
  let '(r, s) := BootProfileManager.save (TransactionId.mk u) (VersionId.from_uuid v)
                   (EditorIoContext.storage <$> editor_io_context w) (boot_profile_manager w) in
  (r, put_storage s w).

(** *** Status *)

(** The file that an editor shows: metadata, else the given name. *)
Definition editor_filename (otherwise : Str.t) (c : ComponentInfo.t) : Str.t :=
  let m := ComponentInfo.metadata c in
  match m !! str "filename" with Some f => f | None => default otherwise (m !! str "arg0") end.
(* services_workspace_manager/src/lib.rs:3371-3409 WorkspaceManager::update_breadcrumbs *)
Definition update_breadcrumbs (w : t) : t :=
  let home := [str "PANDA"; str "ROOT"] in
  match get_focused_component w with
  | Some id =>
      match get_component id w with
      | Some c =>
          let part :=
            match ComponentInfo.component_type c with
            | ComponentType.Editor => str "EDITOR(" ++ editor_filename (str "untitled") c ++ str ")"
            | ComponentType.Cli => str "CLI"
            | ComponentType.PipelineExecutor => str "PIPELINE"
            | ComponentType.FilePicker => str "FILE_PICKER"
            | ComponentType.Custom => str "CUSTOM"
            end in
          w <| breadcrumbs ::= ContextBreadcrumbs.set_parts (home ++ [part]) |>
      | None => w
      end
  | None => w <| breadcrumbs ::= ContextBreadcrumbs.set_parts home |>
  end.
(** The running components. *)
Definition running_count (w : t) : N :=
  len (filter (λ c, ComponentInfo.is_running c = true) (list_components w)).
(* services_workspace_manager/src/lib.rs:3326-3368 WorkspaceManager::update_workspace_status *)
Definition update_workspace_status (w : t) : t :=
  let '(active_editor, has_unsaved) :=
    match get_focused_component w ≫= λ id, get_component id w with
    | Some c =>
        if bool_decide (ComponentInfo.component_type c = ComponentType.Editor) then
          (Some (editor_filename (ComponentInfo.name c) c),
           match ComponentInfo.metadata c !! str "dirty" with
           | Some v => bool_decide (v = str "true")
           | None => false
           end)
        else (None, false)
    | None => (None, false)
    end in
  update_breadcrumbs
    (w <| workspace_status ::= λ s, s <| WorkspaceStatus.active_editor := active_editor |>
                                      <| WorkspaceStatus.has_unsaved_changes := has_unsaved |>
                                      <| WorkspaceStatus.active_jobs := running_count w |> |>).

(** *** Commands ([commands.rs]) *)

(* services_workspace_manager/src/commands.rs:183-200 WorkspaceManager::cmd_open *)
Definition open_config (ty : ComponentType.t) (name : Str.t) (args : list Str.t) : LaunchConfig.t :=
  let config := LaunchConfig.new ty name IdentityKind.Component TrustDomain.user in
  let config :=
    foldl (λ c ia, LaunchConfig.with_metadata (str ("arg" +:+ pretty ia.1)) ia.2 c) config
      (imap pair args) in
  match ty, args with
  | ComponentType.Custom, entry :: _ =>
      LaunchConfig.with_metadata (str "custom.entry") entry
        (LaunchConfig.with_metadata (str "package.entry") entry config)
  | _, _ => config
  end.
(* services_workspace_manager/src/commands.rs:162-218 WorkspaceManager::cmd_open *)
Definition cmd_open (ty : ComponentType.t) (args : list Str.t) (w : t) : outcome (CommandResult.t * t) :=
  if bool_decide (ty = ComponentType.Custom)
     && match args with a :: _ => bool_decide (Str.trim a = []) | [] => true end
  then Return (CommandResult.Error (str "Custom component requires an entry: usage `open custom <entry>`"), w)
  else
    let name := str (ComponentType.display ty) ++ str "-"
                ++ match args with a :: _ => a | [] => str (pretty (N.of_nat (size (components w)))) end in
    '(r, w) ← launch_component (open_config ty name args) w;
    match r with
    | Ok id =>
        let w := match ty, args with
                 | ComponentType.Editor, filename :: _ => w <| recent_history ::= RecentHistory.add_file filename |>
                 | _, _ => w
                 end in
        Return (CommandResult.Opened id name, w)
    | Err err => Return (CommandResult.Error (str "Failed to open component: " ++ WorkspaceError.display err), w)
    end.
(* services_workspace_manager/src/commands.rs:226-233 WorkspaceManager::cmd_list *)
Definition summary (w : t) (c : ComponentInfo.t) : ComponentSummary.t :=
  ComponentSummary.mk (ComponentInfo.id c) (ComponentInfo.component_type c) (ComponentInfo.name c)
    (ComponentInfo.state c) (ComponentInfo.focusable c)
    (bool_decide (Some (ComponentInfo.id c) = get_focused_component w)).
(* services_workspace_manager/src/commands.rs:220-237 WorkspaceManager::cmd_list *)
Definition cmd_list (w : t) : CommandResult.t := CommandResult.ListOf (summary w <$> list_components w).
(** The answer to a focus change. *)
Definition focus_answer (what : string) (m : outcome (result unit WorkspaceError.t * t))
    (ok : t → CommandResult.t) : outcome (CommandResult.t * t) :=
  '(r, w) ← m;
  Return (match r with Ok _ => ok w | Err err => CommandResult.Error (str what ++ WorkspaceError.display err) end, w).
(* services_workspace_manager/src/commands.rs:239-246 WorkspaceManager::cmd_focus *)
Definition cmd_focus (id : ComponentId.t) (w : t) : outcome (CommandResult.t * t) :=
  focus_answer "Failed to focus component: " (focus_component id w) (λ _, CommandResult.FocusChanged id).
(** After the focus moved. *)
Definition focus_moved (w : t) : CommandResult.t :=
  match get_focused_component w with Some id => CommandResult.FocusChanged id | None => CommandResult.Error (str "No component focused") end.
(* services_workspace_manager/src/commands.rs:248-263 WorkspaceManager::cmd_focus_next *)
Definition cmd_focus_next (w : t) : outcome (CommandResult.t * t) :=
  focus_answer "Failed to focus next: " (focus_next w) focus_moved.
(* services_workspace_manager/src/commands.rs:265-280 WorkspaceManager::cmd_focus_prev *)
Definition cmd_focus_prev (w : t) : outcome (CommandResult.t * t) :=
  focus_answer "Failed to focus previous: " (focus_previous w) focus_moved.
(* services_workspace_manager/src/commands.rs:282-289 WorkspaceManager::cmd_close *)
Definition cmd_close (id : ComponentId.t) (w : t) : outcome (CommandResult.t * t) :=
  focus_answer "Failed to close component: " (terminate_component id ExitReason.Normal w) (λ _, CommandResult.Closed id).
(* services_workspace_manager/src/commands.rs:291-309 WorkspaceManager::cmd_status *)
Definition cmd_status (id : ComponentId.t) (w : t) : CommandResult.t :=
  match get_component id w with
  | Some c => CommandResult.Status (summary w c)
  | None => CommandResult.Error (str "Component not found: " ++ component_id_display id)
  end.
(* services_settings/src/lib.rs:164-174 SettingValue::fmt *)
Definition setting_display (v : SettingValue.t) : Str.t :=
  match v with
  | SettingValue.Boolean b => str (Debug.boolean b)
  | SettingValue.Integer i => str (pretty i)
  | SettingValue.Float f => f64_display f
  | SettingValue.String s => s
  | SettingValue.StringList l => utf8_text (Debug.vec (λ s, Debug.str (utf8_string s)) l)
  end.
(* services_workspace_manager/src/commands.rs:316-340 WorkspaceManager::cmd_settings_list *)
Definition cmd_settings_list (w : t) : CommandResult.t :=
  let r := settings_registry w in
  let overrides := SettingsRegistry.list_user_overrides (current_user w) r in
  let line key :=
    match SettingsRegistry.get (current_user w) key r with
    | Some v => (if bool_decide (key ∈ overrides) then str "*" else str " ") ++ str "  " ++ SettingKey.as_str key
                ++ str " = " ++ setting_display v ++ [10]
    | None => []
    end in
  CommandResult.Success (str "Settings:" ++ [10] ++ (SettingsRegistry.list_defaults r ≫= line)
           ++ match overrides with [] => [] | _ => [10] ++ str "* = user override" ++ [10] end).
(** [str::parse::<i64>]. *)
Definition parse_i64 (s : Str.t) : option Z :=
  match s with
  | 45 :: (_ :: _ as s) => Z.opp ∘ Z.of_N <$> digits_from 10 (2 ^ 63) 0 s
  | _ => Z.of_N <$> from_str_radix 10 (2 ^ 63 - 1) s
  end.
Definition one_of (words : list string) (s : Str.t) : bool := existsb (λ n, bool_decide (s = str n)) words.
(** The value that a text means for a setting with this default. *)
(* services_workspace_manager/src/commands.rs:349-399 WorkspaceManager::cmd_settings_set *)
Definition read_value (key value_str : Str.t) (default_value : option SettingValue.t) : result SettingValue.t Str.t :=
  match default_value with
  | Some (SettingValue.Boolean _) =>
      let v := to_lowercase value_str in
      if one_of ["true"; "yes"; "1"; "on"] v then Ok (SettingValue.Boolean true)
      else if one_of ["false"; "no"; "0"; "off"] v then Ok (SettingValue.Boolean false)
      else Err (str "Invalid boolean value: " ++ value_str)
  | Some (SettingValue.Integer _) =>
      match parse_i64 value_str with
      | Some i => Ok (SettingValue.Integer i)
      | None => Err (str "Invalid integer value: " ++ value_str)
      end
  | Some (SettingValue.Float _) =>
      match f64_parse value_str with
      | Some f => Ok (SettingValue.Float f)
      | None => Err (str "Invalid float value: " ++ value_str)
      end
  | Some (SettingValue.String _) => Ok (SettingValue.String value_str)
  | Some (SettingValue.StringList _) => Ok (SettingValue.StringList (Str.trim <$> Slash.split 44 value_str))
  | None => Err (str "Unknown setting: " ++ key)
  end.
(* services_workspace_manager/src/commands.rs:342-407 WorkspaceManager::cmd_settings_set *)
Definition cmd_settings_set (key value_str : Str.t) (w : t) : CommandResult.t * t :=
  match read_value key value_str (SettingsRegistry.get_default (SettingKey.new key) (settings_registry w)) with
  | Err message => (CommandResult.Error message, w)
  | Ok value =>
      (CommandResult.Success (str "Set " ++ key ++ str " = " ++ setting_display value), set_setting key value w)
  end.
(* services_workspace_manager/src/commands.rs:409-425 WorkspaceManager::cmd_settings_reset *)
Definition cmd_settings_reset (key : Str.t) (w : t) : CommandResult.t * t :=
  let '(reset, w) := reset_setting key w in
  if reset then
    (CommandResult.Success (str "Reset " ++ key ++ str " to default: "
              ++ match get_setting key w with Some v => setting_display v | None => str "none" end), w)
  else (CommandResult.Error (str "Setting not found or not overridden: " ++ key), w).
(** A success or an error with its prefix. *)
Definition saved_answer (ok failed : string) (r : result unit Str.t * t) : CommandResult.t * t :=
  (match r.1 with Ok _ => CommandResult.Success (str ok) | Err err => CommandResult.Error (str failed ++ err) end, r.2).
(* services_workspace_manager/src/commands.rs:427-436 WorkspaceManager::cmd_settings_save *)
Definition cmd_settings_save (w : t) : CommandResult.t * t :=
  saved_answer "Settings saved successfully" "Failed to save settings: " (save_settings w).
(* services_workspace_manager/src/commands.rs:438-456 WorkspaceManager::cmd_open_file_picker *)
Definition cmd_open_file_picker (w : t) : outcome (CommandResult.t * t) :=
  let name := str "File Picker" in
  '(r, w) ← launch_component (LaunchConfig.new ComponentType.FilePicker name IdentityKind.Component TrustDomain.user) w;
  Return (match r with
          | Ok id => CommandResult.Opened id name
          | Err err => CommandResult.Error (str "Failed to open file picker: " ++ WorkspaceError.format_with_actions err)
          end, w).
(* services_workspace_manager/src/commands.rs:458-471 WorkspaceManager::cmd_recent_files *)
Definition cmd_recent_files (w : t) : CommandResult.t :=
  match RecentHistory.recent_files (recent_history w) with
  | [] => CommandResult.Success (str "No recent files")
  | l => CommandResult.Success (str "Recent files:" ++ [10] ++ join_with [10] l)
  end.
(* services_workspace_manager/src/commands.rs:473-477 WorkspaceManager::cmd_help *)
Definition cmd_help (category : HelpCategory.t) : CommandResult.t := CommandResult.Success (Help.content category).
(* services_workspace_manager/src/commands.rs:479-493 WorkspaceManager::cmd_boot_profile_show *)
Definition cmd_boot_profile_show (w : t) : CommandResult.t :=
  let config := boot_profile_config w in
  let profile := BootConfig.profile config in
  CommandResult.Success (str "Boot profile: " ++ str (BootProfile.name profile) ++ [10]
           ++ str "Description: " ++ str (BootProfile.description profile) ++ [10]
           ++ str "Editor file: " ++ default (str "<none>") (BootConfig.editor_file config) ++ [10]
           ++ str "Kiosk app: " ++ default (str "<none>") (BootConfig.kiosk_app config) ++ [10]
           ++ str "Auto-start services: " ++ join_with (str ", ") (BootConfig.auto_start config)).
(* services_workspace_manager/src/commands.rs:495-503 WorkspaceManager::cmd_boot_profile_set *)
Definition cmd_boot_profile_set (p : BootProfile.t) (w : t) : CommandResult.t * t :=
  (CommandResult.Success (str "Boot profile set to " ++ str (BootProfile.name p)
            ++ str " (run `boot profile save` to persist)"), set_boot_profile p w).
(* services_workspace_manager/src/commands.rs:505-514 WorkspaceManager::cmd_boot_profile_save *)
Definition cmd_boot_profile_save (w : t) : CommandResult.t * t :=
  saved_answer "Boot profile saved successfully" "Failed to save boot profile: " (save_boot_profile w).
(* services_workspace_manager/src/commands.rs:136-160 WorkspaceManager::execute_command_inner *)
Definition execute_command_inner (command : WorkspaceCommand.t) (w : t) : outcome (CommandResult.t * t) :=
  match command with
  | WorkspaceCommand.Open ty args => cmd_open ty args w
  | WorkspaceCommand.List_ => Return (cmd_list w, w)
  | WorkspaceCommand.Focus id => cmd_focus id w
  | WorkspaceCommand.FocusNext => cmd_focus_next w
  | WorkspaceCommand.FocusPrev => cmd_focus_prev w
  | WorkspaceCommand.Close id => cmd_close id w
  | WorkspaceCommand.Status id => Return (cmd_status id w, w)
  | WorkspaceCommand.GetFocus => Return (CommandResult.FocusInfo (get_focused_component w), w)
  | WorkspaceCommand.SettingsList => Return (cmd_settings_list w, w)
  | WorkspaceCommand.SettingsSet key value => Return (cmd_settings_set key value w)
  | WorkspaceCommand.SettingsReset key => Return (cmd_settings_reset key w)
  | WorkspaceCommand.SettingsSave => Return (cmd_settings_save w)
  | WorkspaceCommand.OpenFilePicker => cmd_open_file_picker w
  | WorkspaceCommand.RecentFiles => Return (cmd_recent_files w, w)
  | WorkspaceCommand.Help category => Return (cmd_help category, w)
  | WorkspaceCommand.BootProfileShow => Return (cmd_boot_profile_show w, w)
  | WorkspaceCommand.BootProfileSet p => Return (cmd_boot_profile_set p w)
  | WorkspaceCommand.BootProfileSave => Return (cmd_boot_profile_save w)
  end.
(* services_workspace_manager/src/commands.rs:98-133 WorkspaceManager::execute_command *)
Definition execute_command (command : WorkspaceCommand.t) (w : t) : outcome (CommandResult.t * t) :=
  '(result, w) ← execute_command_inner command w;
  let w := w <| recent_history ::= RecentHistory.add_command (format_command command) |> in
  let w :=
    match result with
    | CommandResult.Opened _ name => last_action (str "Opened " ++ name) w
    | CommandResult.FocusChanged _ => last_action (str "Focus changed") w
    | CommandResult.Closed _ => last_action (str "Component closed") w
    | CommandResult.Success message => last_action message w
    | CommandResult.Error message => w <| recent_history ::= RecentHistory.add_error message |>
    | _ => w
    end in
  Return (result, update_workspace_status w).

(** *** The command palette and global actions *)

(** By name, then by identifier. *)
Definition palette_leb (a b : CommandDescriptor.t) : bool :=
  if bool_decide (CommandDescriptor.name a = CommandDescriptor.name b)
  then Utf8.leb (CommandId.as_str (CommandDescriptor.id a)) (CommandId.as_str (CommandDescriptor.id b))
  else Utf8.leb (CommandDescriptor.name a) (CommandDescriptor.name b).
(* services_workspace_manager/src/lib.rs:2278-2318 WorkspaceManager::command_palette_preview *)
Definition command_palette_preview (query : Str.t) (limit : nat) (w : t) : outcome (list Str.t * nat * nat) :=
  let blank := bool_decide (Str.trim query = []) in
  commands ← (if blank then Return (CommandPalette.list_commands (command_palette w))
              else CommandPalette.filter_commands query (command_palette w));
  let commands := filter (λ c, CommandDescriptor.enabled c = true) commands in
  let commands := if blank then stable_sort palette_leb commands else commands in
  let total := length commands in
  let shown := Nat.min total limit in
  let line command :=
    str "  " ++ CommandDescriptor.format_for_palette command ++ str " -> `"
    ++ default (CommandId.as_str (CommandDescriptor.id command)) (CommandDescriptor.prompt_pattern command)
    ++ str "`" in
  Return (str ("Command Palette (" +:+ pretty total +:+ ")") :: (line <$> take limit commands)
          ++ (if (shown <? total)%nat
              then [str ("  ... " +:+ pretty (total - shown)%nat
                         +:+ " more commands (type `help` for full command docs)")]
              else []), shown, total).
(* services_workspace_manager/src/lib.rs:2260-2276 WorkspaceManager::find_running_component_of_type *)
Definition find_running_component_of_type (ty : ComponentType.t) (w : t) : option ComponentId.t :=
  head (stable_sort id_leb
    ((filter (λ kv : ComponentId.t * ComponentInfo.t,
        ComponentInfo.state kv.2 = ComponentState.Running ∧ ComponentInfo.component_type kv.2 = ty)
      (hm_iter (components w))).*1)).
(* services_workspace_manager/src/lib.rs:2600-2620 WorkspaceManager::append_cli_output *)
Definition append_cli_output (id : ComponentId.t) (lines : list Str.t) (w : t) : outcome t :=
  let handles := components w !! id ≫= ComponentInfo.views in
  '(timestamp, w) ← take_timestamp w;
  match component_instances w !! id with
  | Some (ComponentInstance.Cli cli) =>
      '(cli, w) ← publish_console handles timestamp id "CLI" (InlineConsole.push_output_lines lines cli) w;
      Return (w <| component_instances ::= <[id := ComponentInstance.Cli cli]> |>)
  | _ => Return w
  end.
(* services_workspace_manager/src/lib.rs:2224-2258 WorkspaceManager::enter_command_mode *)
Definition enter_command_mode (w : t) : outcome (bool * t) :=
  '(preview_lines, shown, total) ← command_palette_preview [] 8 w;
  if (total =? 0)%nat then Return (false, last_action (str "Command palette has no registered commands") w)
  else
    '(cli_id, w) ←
      match find_running_component_of_type ComponentType.Cli w with
      | Some id => Return (Some id, w)
      | None =>
          '(r, w) ← launch_component (LaunchConfig.new ComponentType.Cli (str "command-palette")
                                        IdentityKind.Component TrustDomain.user) w;
          Return (match r with Ok id => Some id | Err _ => None end, w)
      end;
    match cli_id with
    | None => Return (false, last_action (str "Command mode failed: unable to open CLI") w)
    | Some id =>
        '(_, w) ← focus_component id w;
        w ← append_cli_output id preview_lines w;
        Return (true, last_action (str ("Command palette ready: showing " +:+ pretty shown +:+ "/" +:+ pretty total
                                        +:+ " commands")) w)
    end.
(* services_workspace_manager/src/lib.rs:2144-2199 WorkspaceManager::execute_action *)
Definition save_action (w : t) : outcome (bool * t) :=
  let fails reason w := Return (false, last_action (str "Save failed: " ++ reason) w) in
  match get_focused_component w with
  | None => fails (str "no focused component") w
  | Some id =>
      let is_editor := match components w !! id with
                       | Some c => bool_decide (ComponentInfo.component_type c = ComponentType.Editor)
                       | None => false
                       end in
      if negb is_editor then fails (str "focused component is not an editor") w
      else
        '(timestamp, w) ← take_timestamp w;
        match component_instances w !! id with
        | None => fails (str "editor instance missing") w
        | Some (ComponentInstance.Editor editor) =>
            let '(d, w) := draw_editor w in
            let '(r, editor) := ViEditor.save_current_document d editor in
            let put e w := w <| component_instances ::= <[id := ComponentInstance.Editor e]> |> in
            match r with
            | Ok version =>
                '(_, (editor, host)) ← ViEditor.publish_views (view_host w) timestamp editor;
                Return (true, last_action (str "Saved version " ++ utf8_text (VersionId.display version))
                                (put editor (w <| view_host := host |>)))
            | Err err => fails (EditorError.display err) (put editor w)
            end
        | Some _ => fails (str "focused component is not an editor") w
        end
  end.
(** The loop of the quit action. *)
Definition terminate_all (ids : list ComponentId.t) (w : t) : outcome t :=
  fold_outcome (λ w id, '(_, w) ← terminate_component id (ExitReason.Cancelled "Quit action triggered") w; Return w)
    ids w.
(** A focus change as an action. *)
Definition focus_action (m : outcome (result unit WorkspaceError.t * t)) : outcome (bool * t) :=
  '(r, w) ← m; Return (is_ok r, w).
(* services_workspace_manager/src/lib.rs:2104-2222 WorkspaceManager::execute_action *)
Definition execute_action (action : Action.t) (w : t) : outcome (bool * t) :=
  match action with
  | Action.SwitchTile =>
      focus_action (if (1 <? WindowLayoutState.tile_count (window_layout w))%nat then focus_next_tile w
                    else focus_next w)
  | Action.FocusTop =>
      match head (ordered_visible_focusable_components w) with
      | Some id => focus_action (focus_component id w)
      | None => Return (false, w)
      end
  | Action.FocusBottom =>
      match last (ordered_visible_focusable_components w) with
      | Some id => focus_action (focus_component id w)
      | None => Return (false, w)
      end
  | Action.Save => save_action w
  | Action.Quit =>
      w ← terminate_all (hm_iter (components w)).*1 w;
      Return (true, last_action (str "Quitting...") w)
  | Action.CommandMode => enter_command_mode w
  | Action.Custom _ => Return (false, w)
  end.

(** *** File paths for the picker *)

(** The loop over the entries of a directory, that descends into its subdirectories. *)
(* services_workspace_manager/src/lib.rs:2912-2933 WorkspaceManager::resolve_relative_path_recursive *)
Fixpoint search_entries
    (descend : DirectoryView.t → Str.t → gset ObjectId.t → outcome (option Str.t * gset ObjectId.t))
    (fs : FileSystemViewService.t) (target : ObjectId.t) (prefix : Str.t) (entries : list DirectoryEntry.t)
    (visited : gset ObjectId.t) : outcome (option Str.t * gset ObjectId.t) :=
  match entries with
  | [] => Return (None, visited)
  | entry :: entries =>
      let path := match prefix with
                  | [] => DirectoryEntry.name entry
                  | _ => prefix ++ str "/" ++ DirectoryEntry.name entry
                  end in
      if bool_decide (DirectoryEntry.object_id entry = target) then Return (Some path, visited)
      else
        match (if bool_decide (DirectoryEntry.kind entry = ObjectKind.Map)
               then FileSystemViewService.get_directory (DirectoryEntry.object_id entry) fs else None) with
        | Some subdir =>
            '(found, visited) ← descend subdir path visited;
            match found with
            | Some p => Return (Some p, visited)
            | None => search_entries descend fs target prefix entries visited
            end
        | None => search_entries descend fs target prefix entries visited
        end
  end.
(** Depth-first search for an object below a directory; [fuel] bounds the depth, and a directory that
    was visited is not entered again. *)
(* services_workspace_manager/src/lib.rs:2899-2936 WorkspaceManager::resolve_relative_path_recursive *)
Fixpoint resolve_relative_path_recursive (fuel : nat) (fs : FileSystemViewService.t) (directory : DirectoryView.t)
    (target : ObjectId.t) (prefix : Str.t) (visited : gset ObjectId.t)
    : outcome (option Str.t * gset ObjectId.t) :=
  match fuel with
  | O => Diverge
  | S fuel =>
      if bool_decide (DirectoryView.id directory ∈ visited) then Return (None, visited)
      else
        search_entries (λ subdir path visited, resolve_relative_path_recursive fuel fs subdir target path visited)
          fs target prefix
          (stable_sort (λ a b, Utf8.leb (DirectoryEntry.name a) (DirectoryEntry.name b))
             (DirectoryView.list_entries directory))
          ({[DirectoryView.id directory]} ∪ visited)
  end.
(** A path of distinct directories is no longer than their number and the root. *)
Definition path_fuel (fs : FileSystemViewService.t) : nat := size (FileSystemViewService.directories fs) + 2.
(* services_workspace_manager/src/lib.rs:2885-2897 WorkspaceManager::resolve_relative_path_from_context *)
Definition resolve_relative_path_from_context (context : option (FileSystemViewService.t * DirectoryView.t))
    (target : ObjectId.t) : outcome (option Str.t) :=
  match context with
  | None => Return None
  | Some (fs, root) =>
      if bool_decide (target = DirectoryView.id root) then Return (Some [])
      else '(found, _) ← resolve_relative_path_recursive (path_fuel fs) fs root target [] ∅; Return found
  end.
(* services_workspace_manager/src/lib.rs:2867-2883 WorkspaceManager::build_file_picker_breadcrumb *)
Definition build_file_picker_breadcrumb (picker : FilePicker.t)
    (context : option (FileSystemViewService.t * DirectoryView.t)) : outcome Str.t :=
  match context with
  | None => Return (str "ROOT")
  | Some (_, root) =>
      let here := DirectoryView.id (FilePicker.current_directory picker) in
      if bool_decide (here = DirectoryView.id root) then Return (str "ROOT")
      else
        path ← resolve_relative_path_from_context context here;
        Return match path with
               | Some (_ :: _ as p) => str "ROOT/" ++ p
               | _ => str "ROOT"
               end
  end.

(** *** Input *)

(* services_workspace_manager/src/lib.rs:2703-2744 WorkspaceManager::format_command_result_lines *)
Definition format_command_result_lines (r : CommandResult.t) : list Str.t :=
  match r with
  | CommandResult.Opened id name => [str "Opened " ++ name ++ str " (" ++ component_id_display id ++ str ")"]
  | CommandResult.ListOf components =>
      str ("Components (" +:+ pretty (len components) +:+ ")")
      :: ((λ c, str "- " ++ component_id_display (ComponentSummary.id c) ++ str " " ++ ComponentSummary.name c
                ++ str " [" ++ str (ComponentType.display (ComponentSummary.component_type c)) ++ str "]"
                ++ (if ComponentSummary.has_focus c then str " <focus>" else [])) <$> components)
  | CommandResult.FocusChanged id => [str "Focus -> " ++ component_id_display id]
  | CommandResult.Closed id => [str "Closed " ++ component_id_display id]
  | CommandResult.Status c =>
      [component_id_display (ComponentSummary.id c) ++ str " " ++ ComponentSummary.name c ++ str " ["
       ++ str (ComponentType.display (ComponentSummary.component_type c)) ++ str "] state="
       ++ str (ComponentState.display (ComponentSummary.state c))]
  | CommandResult.FocusInfo (Some id) => [str "Focused: " ++ component_id_display id]
  | CommandResult.FocusInfo None => [str "Focused: none"]
  | CommandResult.Success message => Str.lines message
  | CommandResult.Error message => [str "Error: " ++ message]
  end.
(* services_workspace_manager/src/lib.rs:2579-2598 WorkspaceManager::execute_cli_component_command *)
Definition execute_cli_component_command (id : ComponentId.t) (command : Str.t) (w : t) : outcome t :=
  let trimmed := Str.trim command in
  match trimmed with
  | [] => Return w
  | _ =>
      parsed ← parse_command trimmed;
      '(lines, w) ←
        match parsed with
        | Ok c => '(r, w) ← execute_command c w; Return (format_command_result_lines r, w)
        | Err err => Return ([WorkspaceError.format_with_actions err], w)
        end;
      append_cli_output id ((str "pg> " ++ trimmed) :: lines) w
  end.
(* services_workspace_manager/src/lib.rs:2622-2652 WorkspaceManager::execute_custom_component_command *)
Definition execute_custom_component_command (id : ComponentId.t) (command : Str.t) (w : t) : outcome t :=
  let trimmed := Str.trim command in
  match trimmed with
  | [] => Return w
  | _ =>
      let handles := components w !! id ≫= ComponentInfo.views in
      '(timestamp, w) ← take_timestamp w;
      match component_instances w !! id with
      | Some (ComponentInstance.Custom r) =>
          let lines := (str "custom> " ++ trimmed)
            :: (utf8_text <$> CustomComponentRuntime.run_custom_host_command r
                                (utf8_string <$> split_whitespace trimmed)) in
          '(c, w) ← publish_console handles timestamp id "CUSTOM"
                      (InlineConsole.push_output_lines lines (CustomComponentRuntime.console r)) w;
          Return (w <| component_instances ::=
                         <[id := ComponentInstance.Custom (r <| CustomComponentRuntime.console := c |>)]> |>)
      | _ => Return w
      end
  end.
(* services_workspace_manager/src/lib.rs:2747-2777 WorkspaceManager::execute_pipeline_component_command *)
Definition execute_pipeline_component_command (id : ComponentId.t) (command : Str.t) (w : t) : outcome t :=
  let trimmed := Str.trim command in
  match trimmed with
  | [] => Return w
  | _ =>
      let handles := components w !! id ≫= ComponentInfo.views in
      '(timestamp, w) ← take_timestamp w;
      match component_instances w !! id with
      | Some (ComponentInstance.Pipeline r) =>
          '(lines, (r, n)) ← PipelineRuntime.run_pipeline_command uuids reply_ids trimmed r (drawn w);
          let w := w <| drawn := n |> in
          '(c, w) ← publish_console handles timestamp id "PIPELINE"
                      (InlineConsole.push_output_lines ((str "pipeline> " ++ trimmed) :: lines)
                         (PipelineRuntime.console r)) w;
          Return (w <| component_instances ::=
                         <[id := ComponentInstance.Pipeline (r <| PipelineRuntime.console := c |>)]> |>)
      | _ => Return w
      end
  end.
(** A key for the file picker: the picker, its views, and what follows from a choice. *)
(* services_workspace_manager/src/lib.rs:2458-2522 WorkspaceManager::route_input *)
Definition picker_input (id : ComponentId.t) (event : InputEvent.t) (timestamp : N) (picker : FilePicker.t) (w : t)
    : outcome t :=
  let context := editor_io_context w ≫= EditorIoContext.files in
  '(r, picker) ← FilePicker.process_input event (fst <$> context) picker;
  let w := w <| component_instances ::= <[id := ComponentInstance.FilePicker picker]> |> in
  w ← match components w !! id ≫= ComponentInfo.views with
      | Some (main_view, status_view) =>
          breadcrumb ← build_file_picker_breadcrumb picker context;
          '(_, host) ← ViewHost.publish_frame main_view
                         (FilePicker.render_text_buffer (ViewHandleCap.view_id main_view) 0 timestamp picker)
                         (view_host w);
          '(_, host) ← ViewHost.publish_frame status_view
                         (FilePicker.render_status_line (ViewHandleCap.view_id status_view) 0 timestamp breadcrumb
                            picker) host;
          Return (w <| view_host := host |>)
      | None => Return w
      end;
  match r with
  | FilePickerResult.FileSelected object_id name =>
      '(_, w) ← terminate_component id ExitReason.Normal w;
      path ← resolve_relative_path_from_context context object_id;
      '(_, w) ← execute_command (WorkspaceCommand.Open ComponentType.Editor [default name path]) w;
      Return w
  | FilePickerResult.Cancelled => '(_, w) ← terminate_component id ExitReason.Normal w; Return w
  | FilePickerResult.Continue => Return w
  end.
(** A key for the focused component. *)
(* services_workspace_manager/src/lib.rs:2420-2577 WorkspaceManager::route_input *)
Definition component_input (id : ComponentId.t) (event : InputEvent.t) (w : t) : outcome t :=
  '(timestamp, w) ← take_timestamp w;
  let handles := components w !! id ≫= ComponentInfo.views in
  match component_instances w !! id with
  | None => Return w
  | Some (ComponentInstance.Editor editor) =>
      let '(d, w) := draw_editor w in
      let put e w := w <| component_instances ::= <[id := ComponentInstance.Editor e]> |> in
      '(r, editor) ← ViEditor.process_input d event editor;
      match r with
      | Ok _ =>
          '(_, (editor, host)) ← ViEditor.publish_views (view_host w) timestamp editor;
          Return (put editor (w <| view_host := host |>))
      | Err _ => Return (put editor w)
      end
  | Some (ComponentInstance.Cli cli) =>
      '(command, cli) ← InlineConsole.process_input event cli;
      '(cli, w) ← publish_console handles timestamp id "CLI" cli w;
      let w := w <| component_instances ::= <[id := ComponentInstance.Cli cli]> |> in
      match command with Some c => execute_cli_component_command id c w | None => Return w end
  | Some (ComponentInstance.FilePicker picker) => picker_input id event timestamp picker w
  | Some (ComponentInstance.Custom r) =>
      '(command, c) ← InlineConsole.process_input event (CustomComponentRuntime.console r);
      '(c, w) ← publish_console handles timestamp id "CUSTOM" c w;
      let w := w <| component_instances ::=
                      <[id := ComponentInstance.Custom (r <| CustomComponentRuntime.console := c |>)]> |> in
      match command with Some c => execute_custom_component_command id c w | None => Return w end
  | Some (ComponentInstance.Pipeline r) =>
      '(command, c) ← InlineConsole.process_input event (PipelineRuntime.console r);
      '(c, w) ← publish_console handles timestamp id "PIPELINE" c w;
      let w := w <| component_instances ::=
                      <[id := ComponentInstance.Pipeline (r <| PipelineRuntime.console := c |>)]> |> in
      match command with Some c => execute_pipeline_component_command id c w | None => Return w end
  end.
(* services_workspace_manager/src/lib.rs:2321-2577 WorkspaceManager::route_input *)
Definition route_input (event : InputEvent.t) (w : t) : outcome (option ComponentId.t * t) :=
  match InputEvent.as_key event with
  | None => Return (None, w)
  | Some key_event =>
      let w := w <| key_routing_debug ::= λ d, d <| KeyRoutingDebug.last_key_event := Some key_event |>
                                                 <| KeyRoutingDebug.consumed_by_global := false |> |> in
      '(global_consumed, w) ←
        match KeyBindingManager.get_action key_event (key_binding_manager w) with
        | Some action => execute_action action w
        | None => Return (false, w)
        end;
      let w := w <| key_routing_debug ::= λ d, d <| KeyRoutingDebug.consumed_by_global := global_consumed |> |> in
      if global_consumed : bool then Return (None, w)
      else
        match FocusManager.route_event event (focus_manager w) with
        | Ok (Some sub) =>
            match find_subscribed sub w with
            | None => Return (None, w)
            | Some c =>
                let id := ComponentInfo.id c in
                let w := w <| key_routing_debug ::= λ d, d <| KeyRoutingDebug.last_routed_to := Some id |> |> in
                w ← component_input id event w;
                Return (Some id, w)
            end
        | _ => Return (None, w)
        end
  end.

(** *** Rendering *)

(** The latest frame of a view. *)
Definition latest (handle : option ViewHandleCap.t) (w : t) : option ViewFrame.t :=
  h ← handle; match ViewHost.get_latest (ViewHandleCap.view_id h) (view_host w) with Ok f => f | Err _ => None end.
Definition frames (c : ComponentInfo.t) (w : t) : option ViewFrame.t * option ViewFrame.t :=
  (latest (ComponentInfo.main_view c) w, latest (ComponentInfo.status_view c) w).
(* services_workspace_manager/src/lib.rs:3411-3430 WorkspaceManager::component_frames *)
Definition component_frames (id : ComponentId.t) (w : t) : option ViewFrame.t * option ViewFrame.t :=
  match components w !! id with Some c => frames c w | None => (None, None) end.
(* services_workspace_manager/src/lib.rs:3447-3477 WorkspaceManager::build_tile_render_snapshots *)
Definition tile_snapshot (w : t) (focused : nat) (i : nat) (tile : WindowTileState.t) : WorkspaceTileRenderSnapshot.t :=
  let running id := match components w !! id with Some c => ComponentInfo.is_running c | None => false end in
  let tabs := filter (λ id, running id = true) (WindowTileState.tabs tile) in
  let active :=
    match WindowTileState.active_component tile with
    | Some id => if bool_decide (id ∈ tabs) then Some id else head tabs
    | None => head tabs
    end in
  let '(main_view, status_view) :=
    match active with Some id => component_frames id w | None => (None, None) end in
  WorkspaceTileRenderSnapshot.mk i (i =? focused)%nat active tabs main_view status_view.
(* services_workspace_manager/src/lib.rs:3432-3481 WorkspaceManager::build_tile_render_snapshots *)
Definition build_tile_render_snapshots (w : t) : list WorkspaceTileRenderSnapshot.t :=
  let tiles := match WindowLayoutState.tiles (window_layout w) with [] => [WindowTileState.new] | l => l end in
  let focused := Nat.min (WindowLayoutState.focused_tile (window_layout w)) (length tiles - 1) in
  imap (tile_snapshot w focused) tiles.
(* services_workspace_manager/src/lib.rs:3483-3495 WorkspaceManager::frame_to_lines *)
Definition frame_to_lines (f : ViewFrame.t) : list Str.t :=
  match ViewFrame.content f with
  | ViewContent.TextBuffer [] => [[]]
  | ViewContent.TextBuffer lines => lines
  | ViewContent.StatusLine text => [text]
  | ViewContent.Panel metadata => [metadata]
  end.
(* services_workspace_manager/src/lib.rs:3516-3526 WorkspaceManager::compose_horizontal_tiles *)
Definition compose_horizontal_tiles (sections : list (Str.t * list Str.t)) : list Str.t :=
  concat (imap (λ i s, (if (0 <? i)%nat then [[]; str "----------------"] else []) ++ s.2) sections).
(** The width counts bytes, the padding characters. *)
(* services_workspace_manager/src/lib.rs:3497-3514 WorkspaceManager::compose_vertical_tiles *)
Definition compose_vertical_tiles (sections : list (Str.t * list Str.t)) : list Str.t :=
  match sections with
  | [(_, left_lines); (_, right_lines)] =>
      let left_width := foldr Nat.max 0%nat (Str.len <$> left_lines) in
      (λ i, let left := default [] (left_lines !! i) in
            left ++ replicate (left_width - length left) 32 ++ str " || " ++ default [] (right_lines !! i))
      <$> seq 0 (Nat.max (length left_lines) (length right_lines))
  | _ => compose_horizontal_tiles sections
  end.
(** The lines of a tile. *)
(* services_workspace_manager/src/lib.rs:3540-3568 WorkspaceManager::compose_main_view *)
Definition tile_section (tile : WorkspaceTileRenderSnapshot.t) : Str.t * list Str.t :=
  let title := str ("Tile " +:+ pretty (WorkspaceTileRenderSnapshot.tile_index tile + 1)%nat
                    +:+ if WorkspaceTileRenderSnapshot.is_focused tile then " [focused]" else "") in
  let tab id := (if bool_decide (WorkspaceTileRenderSnapshot.active_component tile = Some id)
                 then str "*" else []) ++ component_id_display id in
  (title,
   (title ++ str " tabs=" ++ join_with [32] (tab <$> WorkspaceTileRenderSnapshot.tabs tile))
   :: match WorkspaceTileRenderSnapshot.main_view tile with
      | Some f => frame_to_lines f
      | None => [str "[empty tile]"]
      end).
(** The largest revision of the frames, at least one. *)
Definition max_revision (fs : list (option ViewFrame.t)) : N :=
  foldl (λ n f, match f with Some f => N.max n (ViewFrame.revision f) | None => n end) 1 fs.
Definition axis_label (axis : option SplitAxis.t) : string :=
  SplitAxis.as_label (default SplitAxis.Horizontal axis).
(* services_workspace_manager/src/lib.rs:106-106 COMPOSED_MAIN_VIEW_UUID *)
Definition COMPOSED_MAIN_VIEW_UUID : N := 0xb1e854c52be74f1f9f6f78bebf5d8d51.
(* services_workspace_manager/src/lib.rs:107-107 COMPOSED_STATUS_VIEW_UUID *)
Definition COMPOSED_STATUS_VIEW_UUID : N := 0xa8bd4d667a5f4cb2bf3d8e201024a9c2.
(* services_workspace_manager/src/lib.rs:3528-3591 WorkspaceManager::compose_main_view *)
Definition compose_main_view (axis : option SplitAxis.t) (tiles : list WorkspaceTileRenderSnapshot.t) (w : t)
    : option ViewFrame.t :=
  if (length tiles <=? 1)%nat then None
  else
    let sections := tile_section <$> tiles in
    let lines := str ("Workspace layout: " +:+ axis_label axis +:+ " split")
                 :: match axis with
                    | Some SplitAxis.Vertical => compose_vertical_tiles sections
                    | _ => compose_horizontal_tiles sections
                    end in
    Some (ViewFrame.with_title (str "Workspace Composite")
            (ViewFrame.new (ViewId.mk COMPOSED_MAIN_VIEW_UUID) ViewKind.TextBuffer
               (max_revision (WorkspaceTileRenderSnapshot.main_view <$> tiles))
               (ViewContent.text_buffer lines) (next_timestamp w))).
(* services_workspace_manager/src/lib.rs:3593-3631 WorkspaceManager::compose_status_view *)
Definition compose_status_view (axis : option SplitAxis.t) (tiles : list WorkspaceTileRenderSnapshot.t) (w : t)
    : option ViewFrame.t :=
  if (length tiles <=? 1)%nat then None
  else
    let segment tile :=
      str ("T" +:+ pretty (WorkspaceTileRenderSnapshot.tile_index tile + 1)%nat
           +:+ (if WorkspaceTileRenderSnapshot.is_focused tile then "*" else "") +:+ ": ")
      ++ default (str "idle") (f ← WorkspaceTileRenderSnapshot.status_view tile;
                               ViewContent.get_line 0 (ViewFrame.content f)) in
    let summary := str ("[" +:+ axis_label axis +:+ " split] ") ++ join_with (str " | ") (segment <$> tiles) in
    Some (ViewFrame.new (ViewId.mk COMPOSED_STATUS_VIEW_UUID) ViewKind.StatusLine
            (max_revision (WorkspaceTileRenderSnapshot.status_view <$> tiles))
            (ViewContent.status_line summary) (next_timestamp w)).

(* services_workspace_manager/src/lib.rs:3925-3938 DebugInfo *)
Record DebugInfo := mk_debug {
  focused_component_name : option Str.t;
  focused_component_type : option ComponentType.t;
  debug_last_key_event : option Str.t;
  debug_last_routed_to : option ComponentId.t;
  debug_consumed_by_global : bool
}.
(* services_workspace_manager/src/lib.rs:3890-3922 WorkspaceRenderSnapshot *)
Record WorkspaceRenderSnapshot := mk_render {
  focused_component : option ComponentId.t;
  rs_main_view : option ViewFrame.t;
  rs_status_view : option ViewFrame.t;
  composed_main_view : option ViewFrame.t;
  composed_status_view : option ViewFrame.t;
  layout : WorkspaceLayoutSnapshot.t;
  rs_tiles : list WorkspaceTileRenderSnapshot.t;
  component_count : N;
  rs_running_count : N;
  status_strip : Str.t;
  rs_breadcrumbs : Str.t;
  debug_info : option DebugInfo
}.
(* services_workspace_manager/src/lib.rs:3636-3672 WorkspaceManager::render_snapshot *)
Definition render_snapshot (w : t) : WorkspaceRenderSnapshot :=
  let focused_id := get_focused_component w in
  let focused := focused_id ≫= λ id, get_component id w in
  let '(main_view, status_view) :=
    match focused_id with Some id => component_frames id w | None => (None, None) end in
  let tiles := build_tile_render_snapshots w in
  let layout := window_layout_snapshot (window_layout w) in
  let axis := WorkspaceLayoutSnapshot.split_axis layout in
  let debug := key_routing_debug w in
  mk_render focused_id main_view status_view (compose_main_view axis tiles w) (compose_status_view axis tiles w)
    layout tiles (N.of_nat (size (components w))) (running_count w)
    (WorkspaceStatus.format_status_strip_with_action (workspace_status w))
    (ContextBreadcrumbs.format (breadcrumbs w))
    (Some (mk_debug (ComponentInfo.name <$> focused) (ComponentInfo.component_type <$> focused)
             (key_event_debug <$> KeyRoutingDebug.last_key_event debug) (KeyRoutingDebug.last_routed_to debug)
             (KeyRoutingDebug.consumed_by_global debug))).
(* services_workspace_manager/src/lib.rs:3859-3876 WorkspaceManager::get_all_views *)
Definition get_all_views (w : t) : gmap ComponentId.t (option ViewFrame.t * option ViewFrame.t) :=
  (λ c, frames c w) <$> components w.

(** *** Sessions *)

(* services_workspace_manager/src/lib.rs:3954-3968 WorkspaceComponentSnapshot *)
Record WorkspaceComponentSnapshot := mk_snapshot {
  cs_id : ComponentId.t;
  cs_type : ComponentType.t;
  cs_name : Str.t;
  cs_focusable : bool;
  cs_kind : IdentityKind.t;
  cs_domain : TrustDomain.t;
  cs_budget : option ResourceBudget.t;
  cs_metadata : gmap Str.t Str.t;
  cs_state : ComponentState.t;
  cs_exit_reason : option ExitReason.t;
  cs_main_view : option ViewFrame.t;
  cs_status_view : option ViewFrame.t
}.
(* services_workspace_manager/src/lib.rs:3941-3951 WorkspaceSessionFormat *)
Record WorkspaceSessionFormat := new_format { major : N; minor : N }.
(* services_workspace_manager/src/lib.rs:3971-3977 WorkspaceSessionSnapshot *)
Record WorkspaceSessionSnapshot := mk_session {
  format_version : WorkspaceSessionFormat;
  ss_next_timestamp : N;
  ss_focused : option ComponentId.t;
  ss_components : list WorkspaceComponentSnapshot
}.
(* services_workspace_manager/src/lib.rs:3682-3706 WorkspaceManager::save_session *)
Definition component_snapshot (w : t) (c : ComponentInfo.t) : WorkspaceComponentSnapshot :=
  let '(main_view, status_view) := frames c w in
  let identity := ComponentInfo.identity c in
  mk_snapshot (ComponentInfo.id c) (ComponentInfo.component_type c) (ComponentInfo.name c) (ComponentInfo.focusable c)
    (IdentityMetadata.kind identity) (IdentityMetadata.trust_domain identity) (IdentityMetadata.budget identity)
    (ComponentInfo.metadata c) (ComponentInfo.state c) (ComponentInfo.exit_reason c) main_view status_view.
(** Sorted by identifier; a UUID is ordered as the number of its bytes. *)
(* services_workspace_manager/src/lib.rs:3675-3718 WorkspaceManager::save_session *)
Definition save_session (w : t) : WorkspaceSessionSnapshot :=
  mk_session (new_format 1 0) (next_timestamp w) (get_focused_component w)
    (stable_sort (λ a b, ComponentId.uuid (cs_id a) <=? ComponentId.uuid (cs_id b))
       (component_snapshot w <$> list_components w)).
(* services_workspace_manager/src/lib.rs:3979-3986 remap_frame *)
Definition remap_frame (f : ViewFrame.t) (view : ViewId.t) (id : ComponentId.t) : ViewFrame.t :=
  let f := f <| ViewFrame.view_id := view |> in
  let f := if ViewFrame.revision f =? 0 then f <| ViewFrame.revision := 1 |> else f in
  f <| ViewFrame.component_id := Some (component_id_display id) |>.
Definition publish_saved (handle : ViewHandleCap.t) (f : option ViewFrame.t) (id : ComponentId.t) (w : t) : outcome t :=
  match f with
  | None => Return w
  | Some f =>
      '(_, host) ← ViewHost.publish_frame handle (remap_frame f (ViewHandleCap.view_id handle) id) (view_host w);
      Return (w <| view_host := host |>)
  end.
(** One component of the session. *)
(* services_workspace_manager/src/lib.rs:3733-3846 WorkspaceManager::restore_session *)
Definition restore_component (s : WorkspaceComponentSnapshot) (w : t) : outcome (result unit WorkspaceError.t * t) :=
  '(timestamp, w) ← take_timestamp w;
  let '(identity, w) := new_identity (cs_kind s) (cs_domain s) (cs_name s) (cs_budget s) timestamp w in
  let '(component, w) := new_component (cs_type s) identity (cs_focusable s) (cs_name s) (cs_metadata s) w in
  let component := component <| ComponentInfo.id := cs_id s |> <| ComponentInfo.state := cs_state s |>
                             <| ComponentInfo.exit_reason := cs_exit_reason s |> in
  '(component, w) ← (if ComponentInfo.focusable component then subscribe_input component w
                     else Return (component, w));
  let '(task, w) := draw w in
  let '(workspace, w) := draw w in
  try! main_view, w := open_view ViewKind.TextBuffer (cs_name s) "main" (TaskId.mk task) (TaskId.mk workspace) w in
  let component := ComponentInfo.with_main_view main_view component in
  w ← publish_saved main_view (cs_main_view s) (cs_id s) w;
  try! status_view, w := open_view ViewKind.StatusLine (cs_name s ++ str " - status") "status"
                           (TaskId.mk task) (TaskId.mk workspace) w in
  let component := ComponentInfo.with_status_view status_view component in
  w ← publish_saved status_view (cs_status_view s) (cs_id s) w;
  Return (Ok tt, w <| components ::= <[cs_id s := component]> |>
                   <| window_layout ::= WindowLayoutState.add_component_tab (cs_id s) |>).
Fixpoint restore_components (l : list WorkspaceComponentSnapshot) (w : t) : outcome (result unit WorkspaceError.t * t) :=
  match l with
  | [] => Return (Ok tt, w)
  | s :: l => try! _, w := restore_component s w in restore_components l w
  end.
(** The instances are neither cleared nor made again. *)
(* services_workspace_manager/src/lib.rs:3721-3853 WorkspaceManager::restore_session *)
Definition restore_session (s : WorkspaceSessionSnapshot) (w : t) : outcome (result unit WorkspaceError.t * t) :=
  let w := w <| components := ∅ |> <| focus_manager := FocusManager.new |> <| view_host := ViewHost.new |>
             <| view_subscriptions := ∅ |> <| audit_trail := [] |> <| window_layout := WindowLayoutState.new |>
             <| next_timestamp := ss_next_timestamp s |> in
  try! _, w := restore_components (ss_components s) w in
  match ss_focused s with
  | Some id => '(_, w) ← focus_component id w; Return (Ok tt, w)
  | None => Return (Ok tt, w)
  end.
End manager.
End WorkspaceManager.
