(* ===== verification/WorkspaceProps.v ===== *)
(** * Properties of the workspace manager

    After any history of calls the parts of the manager agree: the layout shows exactly the running
    components, they are the ones with an instance, and they own exactly the views of the view host.

    The second part is about the search for the path of a picked file. *)

From S2P Require Import Prelude Debug CoreTypes Resources Ipc Identity Policy Queue AddrSpace SyscallGate Kernel Lifecycle Storage Pipeline Editor Text Input Views Layout Console Packages Settings Palette Commands CommandsProps FsView Picker EditorVi ViEditor PipelineHost Workspace.
Open Scope string_scope.
Open Scope list_scope.
Open Scope N_scope.

Module WorkspaceSpec.
Import WorkspaceManager.

(** ** What the parts have to agree on *)

(** Who may change a view. *)
Definition owner_of (r : ViewRecord.t) : ViewId.t * TaskId.t * N :=
  (ViewRecord.view_id r, ViewRecord.owner_task_id r, ViewRecord.handle_token r).
Definition handle_of (h : ViewHandleCap.t) : ViewId.t * TaskId.t * N :=
  (ViewHandleCap.view_id h, ViewHandleCap.task_id h, ViewHandleCap.token h).
Definition owners (w : t) : gmap ViewId.t (ViewId.t * TaskId.t * N) := owner_of <$> ViewHost.views (view_host w).
Definition handles (c : ComponentInfo.t) : list ViewHandleCap.t :=
  option_list (ComponentInfo.main_view c) ++ option_list (ComponentInfo.status_view c).

(** Nothing that matters changes: only time passes and identifiers are drawn. *)
Record frame (w w' : t) : Prop := {
  fr_components : components w' = components w;
  fr_instances : dom (component_instances w') = dom (component_instances w);
  fr_layout : window_layout w' = window_layout w;
  fr_focus : focus_manager w' = focus_manager w;
  fr_owners : owners w' = owners w;
  fr_drawn : (drawn w ≤ drawn w')%nat;
  fr_time : next_timestamp w ≤ next_timestamp w'
}.
#[global] Instance frame_refl : Reflexive frame.
Proof. intros w. by split. Qed.
#[global] Instance frame_trans : Transitive frame.
Proof. intros w1 w2 w3 [] []. split; etrans; done. Qed.

(** Fields that the agreement is not about. *)
Ltac frame := intros; split; simpl; (reflexivity || lia || done).

Lemma frame_last_action s w : frame w (last_action s w).
Proof. frame. Qed.
Lemma frame_timestamp w ts w' : take_timestamp w = Return (ts, w') → frame w w' ∧ ts = next_timestamp w
  ∧ next_timestamp w' = ts + 1.
Proof.
  unfold take_timestamp, add_u64, checked_add. destruct (_ <=? _); simpl; [|done]. intros [= <- <-].
  split; [|done]. frame.
Qed.

(** Publishing changes no owner. *)
Lemma publish_owners h f v r v' :
  ViewHost.publish_frame h f v = Return (r, v') → owner_of <$> ViewHost.views v' = owner_of <$> ViewHost.views v.
Proof.
  unfold ViewHost.publish_frame. destruct (ViewHost.views v !! _) as [rec|] eqn:E; [|by intros [= <- <-]].
  destruct (ViewRecord.verify_handle h rec); [|by intros [= <- <-]]. case_bool_decide; simpl; [|by intros [= <- <-]].
  destruct (ViewRecord.verify_revision _ _) as [[]| |]; simpl; try done; intros [= <- <-]; [|done].
  simpl. rewrite fmap_insert. apply map_eq. intros i.
  destruct (decide (i = ViewHandleCap.view_id h)) as [->|Hne]; [|by rewrite lookup_insert_ne].
  by rewrite lookup_insert_eq, lookup_fmap, E.
Qed.
Lemma frame_host v w : owner_of <$> ViewHost.views v = owners w → frame w (w <| view_host := v |>).
Proof. frame. Qed.

(** ** Identifiers drawn by a pipeline *)

Section counter.
Context {K : Type} {api : KernelApi K} {uf : UuidFormat} {sc : StageCodec} (ids : nat → Uuid)
  (token : K → option CancellationReason.t).

Lemma stage_once_counts stage input s r s' :
  PipelineExecutor.execute_stage_once ids stage input s = Return (r, s') → (s.2 ≤ s'.2)%nat.
Proof.
  unfold PipelineExecutor.execute_stage_once, PipelineExecutor.draw, PipelineExecutor.kernel_call, try_bind.
  destruct (api_lookup_service _ _) as [ch|[]]; try (by intros [= <- <-]).
  destruct (encode_request _); [|by intros [= <- <-]].
  destruct (api_send_message _ _ _) as [[r1 k1]| |]; cbn [mbind outcome_bind]; try done.
  destruct r1; cbn [map_err mbind outcome_bind snd]; [|intros [= <- <-]; simpl; lia].
  destruct (match StageSpec.timeout_ms stage with Some _ => _ | None => _ end) as [d| |];
    cbn [mbind outcome_bind]; try done.
  destruct (api_receive_message _ _ _) as [[r2 k2]| |]; cbn [mbind outcome_bind]; try done.
  destruct r2; cbn [map_err]; [|intros [= <- <-]; simpl; lia].
  destruct (negb _); [intros [= <- <-]; simpl; lia|].
  destruct (decode_response _); intros [= <- <-]; simpl; lia.
Qed.
Lemma retry_counts fuel stage input d i trace s r trace' s' :
  PipelineExecutor.retry_loop ids token fuel stage input d i trace s = Return (r, (trace', s')) → (s.2 ≤ s'.2)%nat.
Proof.
  revert i trace s. induction fuel as [|fuel IH]; intros i trace s; [done|]. cbn [PipelineExecutor.retry_loop].
  destruct (PipelineExecutor.is_cancelled _ s); [by intros [= <- <- <-]|].
  destruct (PipelineExecutor.deadline_passed d _); [by intros [= <- <- <-]|].
  destruct (PipelineExecutor.execute_stage_once _ stage input s) as [[r1 s1]| |] eqn:E1;
    cbn [mbind outcome_bind]; try done.
  apply stage_once_counts in E1. destruct r1 as [[]|]; try (by intros [= <- <- <-]).
  destruct (_ <=? i); [by intros [= <- <- <-]|].
  destruct (0 <? _); [|intros E; apply IH in E; lia].
  destruct (Duration.from_millis _) as [d1| |]; cbn [mbind outcome_bind]; try done.
  destruct (api_sleep _ _) as [[? k]| |]; cbn [mbind outcome_bind]; try done.
  intros E. apply IH in E. simpl in E. lia.
Qed.
Lemma stage_context_counts x spec stage (s : K * nat) :
  (s.2 ≤ (PipelineExecutor.build_stage_context ids x spec stage s).2.2)%nat.
Proof.
  unfold PipelineExecutor.build_stage_context, PipelineExecutor.actor_identity, PipelineExecutor.draw.
  destruct (PipelineExecutor.identity x); simpl; lia.
Qed.
Lemma run_stage_counts spec d auth stage x trace input s r x' s' :
  PipelineExecutor.run_stage ids token spec d auth stage x trace input s = Return (r, (x', s')) → (s.2 ≤ s'.2)%nat.
Proof.
  unfold PipelineExecutor.run_stage. destruct (PipelineExecutor.is_cancelled _ s); [by intros [= <- <- <-]|].
  destruct (PipelineExecutor.deadline_passed d _); [by intros [= <- <- <-]|].
  destruct (PipelineExecutor.stage_authority _ x spec stage auth s) as [r1 s1] eqn:E1.
  assert (s.2 ≤ s1.2)%nat as H1.
  { revert E1. unfold PipelineExecutor.stage_authority. destruct (PipelineExecutor.policy_engine x); [|by intros [= <- <-]].
    pose proof (stage_context_counts x spec stage s). destruct (PipelineExecutor.build_stage_context _ x spec stage s).
    by intros [= <- <-]. }
  destruct r1 as [a|]; [|by intros [= <- <- <-]].
  destruct (PipelineExecutor.missing_capability x stage a); [by intros [= <- <- <-]|].
  unfold PipelineExecutor.execute_stage_with_retry.
  destruct (PipelineExecutor.deadline_after _ _) as [sd| |]; cbn [mbind outcome_bind]; try done.
  destruct (PipelineExecutor.retry_loop _ _ _ _ _ _ _ _ _) as [[r2 [t2 s2]]| |] eqn:E2; cbn [mbind outcome_bind]; try done.
  apply retry_counts in E2. destruct r2 as [sr|]; [|intros [= <- <- <-]; lia].
  set (s3 := match PipelineExecutor.policy_engine x with Some _ => _ | None => s2 end).
  assert (s2.2 ≤ s3.2)%nat as H3.
  { unfold s3. destruct (PipelineExecutor.policy_engine x); [apply stage_context_counts|done]. }
  destruct sr; intros [= <- <- <-]; lia.
Qed.
Lemma run_stages_counts spec d auth stages x trace input s r x' s' :
  PipelineExecutor.run_stages ids token spec d auth stages x trace input s = Return (r, (x', s')) → (s.2 ≤ s'.2)%nat.
Proof.
  revert x trace input s. induction stages as [|stage stages IH]; intros x trace input s;
    cbn [PipelineExecutor.run_stages]; [by intros [= <- <- <-]|].
  destruct (PipelineExecutor.run_stage _ _ _ _ _ _ _ _ _ _) as [[r1 [x1 s1]]| |] eqn:E1; cbn [mbind outcome_bind]; try done.
  apply run_stage_counts in E1. destruct r1 as [[t1 o1]|]; [|by intros [= <- <- <-]].
  intros E. apply IH in E. lia.
Qed.
Lemma execute_counts spec input x s r x' s' :
  PipelineExecutor.execute ids token spec input x s = Return (r, (x', s')) → (s.2 ≤ s'.2)%nat.
Proof.
  unfold PipelineExecutor.execute. destruct (PipelineSpec.validate spec); [|by intros [= <- <- <-]].
  destruct (PipelineExecutor.is_cancelled _ s); [by intros [= <- <- <-]|].
  destruct (negb _); [by intros [= <- <- <-]|].
  destruct (PipelineExecutor.execution_authority _ x spec s) as [r1 s1] eqn:E1.
  assert (s.2 ≤ s1.2)%nat as H1.
  { revert E1. unfold PipelineExecutor.execution_authority, PipelineExecutor.build_pipeline_context,
      PipelineExecutor.actor_identity, PipelineExecutor.draw.
    destruct (PipelineExecutor.policy_engine x); [|by intros [= <- <-]].
    destruct (PipelineExecutor.identity x); intros [= <- <-]; simpl; lia. }
  destruct r1; [|by intros [= <- <- <-]].
  destruct (PipelineExecutor.deadline_after _ _) as [sd| |]; cbn [mbind outcome_bind]; try done.
  destruct (PipelineExecutor.run_stages _ _ _ _ _ _ _ _ _ _) as [[r2 [x2 s2]]| |] eqn:E2; cbn [mbind outcome_bind]; try done.
  apply run_stages_counts in E2. destruct r2 as [[t2 o2]|]; [|intros [= <- <- <-]; lia].
  destruct (negb _); intros [= <- <- <-]; lia.
Qed.
End counter.

Section props.
Context `{HashOrder} `{UuidText} `{Lowercase} `{DefaultHasher} `{StageCodec} `{HandlerCodec}.
Context `{SettingsJson} `{BootJson} `{StdFormat} (uuids reply_ids : nat → Uuid).

Lemma frame_draw w u w' : draw uuids w = (u, w') → frame w w' ∧ u = uuids (drawn w) ∧ drawn w' = S (drawn w).
Proof. intros [= <- <-]. split; [|done]. frame. Qed.
Lemma frame_draw_editor w d w' : draw_editor uuids w = (d, w') → frame w w'.
Proof. intros [= <- <-]. frame. Qed.
Lemma frame_instance id i w :
  is_Some (component_instances w !! id) → frame w (w <| component_instances ::= <[id := i]> |>).
Proof.
  intros Hi. split; simpl; try done. rewrite dom_insert_L. apply elem_of_dom in Hi. set_solver.
Qed.

Lemma frame_console hs ts id label c w c' w' :
  publish_console hs ts id label c w = Return (c', w') → frame w w'.
Proof.
  unfold publish_console. destruct hs as [[m s]|]; [|by intros [= <- <-]].
  destruct (InlineConsole.publish_views _ _ _ _ _ _ _) as [[c1 v]| |] eqn:E; simpl; try done. intros [= <- <-].
  apply frame_host. revert E. unfold InlineConsole.publish_views, add_u64, checked_add.
  destruct (_ <=? _); simpl; [|done].
  destruct (ViewHost.publish_frame m _ _) as [[r1 v1]| |] eqn:E1; simpl; try done.
  destruct (_ <=? _); simpl; [|done].
  destruct (ViewHost.publish_frame s _ _) as [[r2 v2]| |] eqn:E2; simpl; try done.
  intros [= <- <-]. by rewrite (publish_owners _ _ _ _ _ E2), (publish_owners _ _ _ _ _ E1).
Qed.
Lemma editor_publish_owners v ts (e : ViEditor.t StorageEditorIo.t) r e' v' :
  ViEditor.publish_views v ts e = Return (r, (e', v')) → owner_of <$> ViewHost.views v' = owner_of <$> ViewHost.views v.
Proof.
  assert (∀ (e : ViEditor.t StorageEditorIo.t) r e' v', ViEditor.publish_main v ts e = Return (r, (e', v')) →
    owner_of <$> ViewHost.views v' = owner_of <$> ViewHost.views v) as Hmain.
  { clear. intros e r e' v'. unfold ViEditor.publish_main, add_u64, checked_add.
    destruct (ViEditor.main_view_handle e); [|by intros [= <- <- <-]].
    destruct (ViewHost.publish_frame _ _ _) as [[r1 v1]| |] eqn:E1; simpl; try done.
    destruct r1; [destruct (_ <=? _); simpl; [|done]|]; intros [= <- <- <-]; by apply publish_owners in E1. }
  unfold ViEditor.publish_views. destruct (ViEditor.publish_main v ts e) as [[[] [e1 v1]]| |] eqn:E; simpl; try done;
    apply Hmain in E; [|by intros [= <- <- <-]].
  destruct (ViEditor.status_view_handle e1); [|by intros [= <- <- <-]].
  destruct (ViewHost.publish_frame _ _ _) as [[r2 v2]| |] eqn:E2; simpl; try done.
  apply publish_owners in E2. unfold add_u64, checked_add.
  destruct r2; [destruct (_ <=? _); simpl; [|done]|]; intros [= <- <- <-]; by rewrite E2.
Qed.

(** ** The agreement *)

Definition running (w : t) (id : ComponentId.t) : Prop :=
  ∃ c, components w !! id = Some c ∧ ComponentInfo.is_running c = true.
Record ws_ok (w : t) : Prop := {
  ok_id id c : components w !! id = Some c →
    ComponentInfo.id c = id ∧ ∃ k, (k < drawn w)%nat ∧ id = ComponentId.mk (uuids k);
  ok_instance id : id ∈ dom (component_instances w) ↔ running w id;
  ok_layout : LayoutSpec.layout_ok (window_layout w);
  ok_tabs id : id ∈ LayoutSpec.components (window_layout w) ↔ running w id;
  ok_sub id c s : components w !! id = Some c → ComponentInfo.subscription c = Some s →
    InputSubscriptionCap.id s < next_timestamp w;
  ok_sub_inj id c s id' c' s' : components w !! id = Some c → components w !! id' = Some c' →
    ComponentInfo.subscription c = Some s → ComponentInfo.subscription c' = Some s' →
    InputSubscriptionCap.id s = InputSubscriptionCap.id s' → id = id';
  ok_stack : Forall (λ s, ∃ id c, components w !! id = Some c ∧ ComponentInfo.subscription c = Some s)
               (FocusManager.focus_stack (focus_manager w));
  ok_handles id c : components w !! id = Some c → ∃ m s, ComponentInfo.main_view c = Some m
    ∧ ComponentInfo.status_view c = Some s ∧ ViewHandleCap.view_id m ≠ ViewHandleCap.view_id s;
  ok_drawn id c h : components w !! id = Some c → h ∈ handles c →
    ∃ k, (k < drawn w)%nat ∧ ViewHandleCap.view_id h = ViewId.mk (uuids k);
  ok_disjoint id c h id' c' h' : components w !! id = Some c → components w !! id' = Some c' →
    h ∈ handles c → h' ∈ handles c' → ViewHandleCap.view_id h = ViewHandleCap.view_id h' → id = id';
  ok_views v d : owners w !! v = Some d ↔
    ∃ id c h, components w !! id = Some c ∧ ComponentInfo.is_running c = true ∧ h ∈ handles c
      ∧ v = ViewHandleCap.view_id h ∧ d = handle_of h
}.

Lemma frame_ok w w' : frame w w' → ws_ok w → ws_ok w'.
Proof.
  intros [Ec Ei El Ef Eo Hd Ht] [Q1 Q2 Q3 Q4 Q5 Q6 Q7 Q8 Q9 Q10 Q11].
  assert (∀ id, running w' id ↔ running w id) as Hr by (intros; unfold running; by rewrite Ec).
  split; rewrite ?Ec, ?Ei, ?El, ?Ef, ?Eo; try done.
  - intros id c Hc. destruct (Q1 id c Hc) as (? & k & ? & ?). split; [done|]. exists k. split; [lia|done].
  - intros id. by rewrite Hr.
  - intros id. by rewrite Hr.
  - intros id c s Hc Hs. pose proof (Q5 id c s Hc Hs). lia.
  - intros id c h Hc Hh. destruct (Q9 id c h Hc Hh) as (k & ? & ?). exists k. split; [lia|done].
Qed.

(** In the beginning there is nothing. *)
Lemma ws_new_ok identity : ws_ok (new identity).
Proof.
  assert (∀ id c, components (new identity) !! id ≠ Some c) as Hno.
  { intros id c. simpl. by rewrite lookup_empty. }
  assert (∀ id, ¬ running (new identity) id) as Hnr by (intros id (c & Hc & _); by eapply Hno).
  split; try (intros; exfalso; by eapply Hno).
  - intros id. split; [|by intros ?%Hnr]. simpl. rewrite dom_empty_L. set_solver.
  - apply LayoutSpec.new_ok.
  - intros id. split; [|by intros ?%Hnr]. intros Hi. by apply not_elem_of_nil in Hi.
  - constructor.
  - intros v d. unfold owners. simpl. rewrite fmap_empty, lookup_empty. split; [done|].
    intros (id & c & h & Hc & _). by rewrite lookup_empty in Hc.
Qed.

(** ** Focus *)

Lemma layout_change_ok l w :
  ws_ok w → LayoutSpec.layout_ok l → LayoutSpec.components l ≡ₚ LayoutSpec.components (window_layout w) →
  ws_ok (w <| window_layout := l |>).
Proof.
  intros [Q1 Q2 Q3 Q4 Q5 Q6 Q7 Q8 Q9 Q10 Q11] Hl Hp. split; try done. intros id. simpl. rewrite Hp. apply Q4.
Qed.
Lemma layout_step_ok o w :
  ws_ok w → LayoutSpec.effect o (LayoutSpec.components (window_layout w)) = LayoutSpec.components (window_layout w) →
  ws_ok (w <| window_layout ::= LayoutSpec.step o |>).
Proof.
  intros Hw He. destruct (LayoutSpec.step_spec o (window_layout w) (ok_layout _ Hw)) as [Hl Hp].
  rewrite He in Hp. by apply (layout_change_ok (LayoutSpec.step o (window_layout w))).
Qed.
Lemma stack_ok m w :
  ws_ok w → FocusManager.focus_stack m ⊆ FocusManager.focus_stack (focus_manager w) →
  ws_ok (w <| focus_manager := m |>).
Proof.
  intros [Q1 Q2 Q3 Q4 Q5 Q6 Q7 Q8 Q9 Q10 Q11] Hs. split; try done. simpl.
  rewrite Forall_forall in *. intros s Hin. by apply Q7, Hs.
Qed.
Lemma push_stack_ok m id c s w :
  ws_ok w → components w !! id = Some c → ComponentInfo.subscription c = Some s →
  FocusManager.focus_stack m ⊆ s :: FocusManager.focus_stack (focus_manager w) →
  ws_ok (w <| focus_manager := m |>).
Proof.
  intros [Q1 Q2 Q3 Q4 Q5 Q6 Q7 Q8 Q9 Q10 Q11] Hc Hs Hsub. split; try done. simpl.
  rewrite Forall_forall in *. intros s' Hin. apply Hsub in Hin. apply elem_of_cons in Hin as [->|Hin]; [eauto|].
  by apply Q7.
Qed.
Lemma request_focus_stack s m r m' :
  FocusManager.request_focus s m = Return (r, m') →
  FocusManager.focus_stack m' ⊆ s :: FocusManager.focus_stack m ∧ r = Ok tt.
Proof.
  unfold FocusManager.request_focus, FocusManager.take_timestamp, add_u64, checked_add.
  destruct (_ <=? _); simpl; [|done]. destruct (FocusManager.focus_stack m) as [|c l] eqn:E; simpl.
  - intros [= <- <-]. simpl. rewrite E. done.
  - destruct (_ =? _); intros [= <- <-]; simpl; rewrite E; (split; [|done]); set_solver.
Qed.
Lemma remove_subscription_stack s m r m' :
  FocusManager.remove_subscription s m = Return (r, m') → FocusManager.focus_stack m' ⊆ FocusManager.focus_stack m.
Proof.
  unfold FocusManager.remove_subscription, FocusManager.take_timestamp, add_u64, checked_add.
  destruct (list_find _ _) as [[pos x]|]; [|by intros [= <- <-]].
  destruct (_ <=? _); simpl; [|done]. intros [= <- <-]. simpl.
  intros y Hy. eapply elem_of_submseteq; [exact Hy|]. apply sublist_submseteq, sublist_delete.
Qed.

Lemma focus_ok id w r w' : ws_ok w → focus_component id w = Return (r, w') → ws_ok w'.
Proof.
  intros Hw. unfold focus_component. destruct (components w !! id) as [c|] eqn:Ec; [|by intros [= <- <-]].
  destruct (ComponentInfo.focusable c); simpl; [|by intros [= <- <-]].
  destruct (ComponentInfo.subscription c) as [s|] eqn:Es; [|by intros [= <- <-]].
  destruct (refusal _ _ _); [by intros [= <- <-]|].
  destruct (FocusManager.request_focus s (focus_manager w)) as [[r1 m]| |] eqn:Ef; simpl; try done.
  apply request_focus_stack in Ef as [Hst ->].
  destruct (take_timestamp _) as [[ts w2]| |] eqn:Et; simpl; try done. intros [= <- <-].
  apply frame_timestamp in Et as [Hfr _]. eapply frame_ok; [|eapply frame_ok; [exact Hfr|]].
  - frame.
  - apply (layout_step_ok (LayoutSpec.Focus id)); [|done]. by eapply push_stack_ok.
Qed.

Lemma cycle_ok ordered forward w r w' : ws_ok w → cycle_focus_in_order ordered forward w = Return (r, w') → ws_ok w'.
Proof.
  intros Hw. unfold cycle_focus_in_order. destruct ordered; [by intros [= <- <-]|].
  destruct (expect _) as [target| |]; simpl; try done. by apply focus_ok.
Qed.
Lemma focus_tab_ok o turn otherwise w r w' :
  (∀ l, (turn l).2 = LayoutSpec.step o l) → (∀ l, LayoutSpec.effect o l = l) →
  (∀ w r w', ws_ok w → otherwise w = Return (r, w') → ws_ok w') →
  ws_ok w → focus_tab turn otherwise w = Return (r, w') → ws_ok w'.
Proof.
  intros Ht He Ho Hw. unfold focus_tab. destruct (turn (window_layout w)) as [candidate l] eqn:E.
  assert (ws_ok (w <| window_layout := l |>)) as Hl.
  { pose proof (layout_step_ok o w Hw (He _)) as Hs. simpl in Hs. replace l with (LayoutSpec.step o (window_layout w)); [done|].
    by rewrite <-Ht, E. }
  destruct candidate as [id|]; [|by apply Ho]. destruct (is_focusable_running_component _ _); [by apply focus_ok|by apply Ho].
Qed.
Lemma split_ok axis w r w' : ws_ok w → split_focused_tile axis w = Return (r, w') → ws_ok w'.
Proof.
  intros Hw. unfold split_focused_tile.
  assert (ws_ok (w <| window_layout ::= WindowLayoutState.split_focused_tile axis |>)) as Hl.
  { by apply (layout_step_ok (LayoutSpec.Split axis)). }
  destruct (WindowLayoutState.focused_active_component _) as [id|]; [|by intros [= <- <-]].
  destruct (is_focusable_running_component _ _); [|by intros [= <- <-]].
  destruct (focus_component id _) as [[r1 w1]| |] eqn:E; simpl; try done. intros [= <- <-]. by eapply focus_ok.
Qed.

(** ** Terminating *)

Lemma handles_spec c m s :
  ComponentInfo.main_view c = Some m → ComponentInfo.status_view c = Some s → handles c = [m; s].
Proof. intros E1 E2. unfold handles. by rewrite E1, E2. Qed.

(** A handle opens exactly the view with its owner and token. *)
Lemma remove_view_owners h v :
  (∀ d, (owner_of <$> ViewHost.views v) !! ViewHandleCap.view_id h = Some d → d = handle_of h) →
  owner_of <$> ViewHost.views (ViewHost.remove_view h v).2
  = delete (ViewHandleCap.view_id h) (owner_of <$> ViewHost.views v).
Proof.
  intros Hd. unfold ViewHost.remove_view. destruct (ViewHost.views v !! _) as [r|] eqn:E.
  - specialize (Hd (owner_of r)). rewrite lookup_fmap, E in Hd. specialize (Hd eq_refl). injection Hd as E1 E2 E3.
    unfold ViewRecord.verify_handle. rewrite E1, E2, E3, !bool_decide_true, N.eqb_refl by done. simpl.
    by rewrite fmap_delete.
  - simpl. rewrite delete_id; [done|]. by rewrite lookup_fmap, E.
Qed.
(** The view of a component is opened by its handle. *)
Lemma own_handle w id c h d :
  ws_ok w → components w !! id = Some c → h ∈ handles c → owners w !! ViewHandleCap.view_id h = Some d → d = handle_of h.
Proof.
  intros Hw Hc Hh Hd. apply (ok_views _ Hw) in Hd as (id' & c' & h' & Hc' & _ & Hh' & Ev & ->).
  assert (id = id') as <- by (eapply (ok_disjoint _ Hw id c h id' c' h'); done).
  rewrite Hc in Hc'. injection Hc' as <-. destruct (ok_handles _ Hw id c Hc) as (m & s & Em & Es & Hne).
  rewrite (handles_spec c m s Em Es) in Hh, Hh'. set_solver.
Qed.

Lemma terminate_core id c c' w w' :
  ws_ok w → components w !! id = Some c →
  ComponentInfo.is_running c' = false → ComponentInfo.id c' = ComponentInfo.id c →
  ComponentInfo.subscription c' = ComponentInfo.subscription c → ComponentInfo.main_view c' = ComponentInfo.main_view c →
  ComponentInfo.status_view c' = ComponentInfo.status_view c →
  components w' = <[id := c']> (components w) →
  dom (component_instances w') = dom (component_instances w) ∖ {[id]} →
  window_layout w' = WindowLayoutState.remove_component id (window_layout w) →
  FocusManager.focus_stack (focus_manager w') ⊆ FocusManager.focus_stack (focus_manager w) →
  (∀ v d, owners w' !! v = Some d ↔ owners w !! v = Some d ∧ v ∉ ViewHandleCap.view_id <$> handles c) →
  (drawn w ≤ drawn w')%nat → next_timestamp w ≤ next_timestamp w' → ws_ok w'.
Proof.
  intros Hw Hc Hnr Hid Hsub Hm Hs Ec Ei El Hst Eo Hdr Hts.
  assert (handles c' = handles c) as Hh by (unfold handles; by rewrite Hm, Hs).
  assert (∀ i x, components w' !! i = Some x → ∃ y, components w !! i = Some y ∧ ComponentInfo.id x = ComponentInfo.id y
    ∧ ComponentInfo.subscription x = ComponentInfo.subscription y ∧ handles x = handles y
    ∧ ComponentInfo.main_view x = ComponentInfo.main_view y ∧ ComponentInfo.status_view x = ComponentInfo.status_view y)
    as Hback.
  { intros i x. rewrite Ec. destruct (decide (i = id)) as [->|Hne].
    - rewrite lookup_insert_eq. intros [= <-]. eauto 10.
    - rewrite lookup_insert_ne by done. eauto 10. }
  assert (∀ i, running w' i ↔ running w i ∧ i ≠ id) as Hr.
  { intros i. unfold running. rewrite Ec. destruct (decide (i = id)) as [->|Hne].
    - rewrite lookup_insert_eq. split; [|naive_solver]. intros (x & [= <-] & Hx). by rewrite Hnr in Hx.
    - rewrite lookup_insert_ne by done. naive_solver. }
  destruct (LayoutSpec.remove_spec id (window_layout w) (ok_layout _ Hw)) as [Hl Hcs].
  split.
  - intros i x Hx. destruct (Hback i x Hx) as (y & Hy & E & _). destruct (ok_id _ Hw i y Hy) as (? & k & ? & ?).
    split; [congruence|]. exists k. split; [lia|done].
  - intros i. rewrite Ei, Hr, <-(ok_instance _ Hw). set_solver.
  - by rewrite El.
  - intros i. rewrite El, Hcs, list_elem_of_filter, Hr, (ok_tabs _ Hw). tauto.
  - intros i x t0 Hx Ht. destruct (Hback i x Hx) as (y & Hy & _ & E & _). rewrite E in Ht.
    pose proof (ok_sub _ Hw i y t0 Hy Ht). lia.
  - intros i x t0 i' x' t' Hx Hx' Ht Ht'. destruct (Hback i x Hx) as (y & Hy & _ & E & _).
    destruct (Hback i' x' Hx') as (y' & Hy' & _ & E' & _). rewrite E in Ht. rewrite E' in Ht'.
    by eapply (ok_sub_inj _ Hw).
  - apply Forall_forall. intros t0 Hin. apply Hst in Hin. pose proof (ok_stack _ Hw) as Hok.
    rewrite Forall_forall in Hok. destruct (Hok t0 Hin) as (i & x & Hx & Ht).
    destruct (decide (i = id)) as [->|Hne].
    + exists id, c'. rewrite Ec, lookup_insert_eq. split; [done|]. rewrite Hc in Hx. injection Hx as <-. congruence.
    + exists i, x. rewrite Ec, lookup_insert_ne by done. done.
  - intros i x Hx. destruct (Hback i x Hx) as (y & Hy & _ & _ & _ & Em & Es). rewrite Em, Es. by apply (ok_handles _ Hw i).
  - intros i x h Hx Hin. destruct (Hback i x Hx) as (y & Hy & _ & _ & E & _). rewrite E in Hin.
    destruct (ok_drawn _ Hw i y h Hy Hin) as (k & ? & ?). exists k. split; [lia|done].
  - intros i x h i' x' h' Hx Hx' Hin Hin'. destruct (Hback i x Hx) as (y & Hy & _ & _ & E & _).
    destruct (Hback i' x' Hx') as (y' & Hy' & _ & _ & E' & _). rewrite E in Hin. rewrite E' in Hin'.
    by eapply (ok_disjoint _ Hw).
  - intros v d. rewrite Eo, (ok_views _ Hw). split.
    + intros [(i & x & h & Hx & Hrun & Hin & -> & ->) Hnot]. exists i, x, h. rewrite Ec.
      rewrite lookup_insert_ne; [done|]. intros <-. rewrite Hc in Hx. injection Hx as <-.
      apply Hnot, list_elem_of_fmap. eauto.
    + intros (i & x & h & Hx & Hrun & Hin & -> & ->). rewrite Ec in Hx.
      destruct (decide (i = id)) as [->|Hne].
      { rewrite lookup_insert_eq in Hx. injection Hx as <-. by rewrite Hnr in Hrun. }
      rewrite lookup_insert_ne in Hx by done. split; [by exists i, x, h|].
      intros (h' & Ev & Hin')%list_elem_of_fmap. apply Hne.
      by apply (ok_disjoint _ Hw i x h id c h').
Qed.

Lemma exit_not_running reason : (exit_state reason).1 ≠ ComponentState.Running.
Proof. by destruct reason. Qed.

(** The two views of a component are closed. *)
Lemma close_views_owners w id c m s v d :
  ws_ok w → components w !! id = Some c → ComponentInfo.main_view c = Some m → ComponentInfo.status_view c = Some s →
  (owner_of <$> ViewHost.views (ViewHost.remove_view s (ViewHost.remove_view m (view_host w)).2).2) !! v = Some d
  ↔ owners w !! v = Some d ∧ v ∉ ViewHandleCap.view_id <$> handles c.
Proof.
  intros Hw Ec Em Es. pose proof (own_handle w id c) as Hown. rewrite (handles_spec c m s Em Es) in *.
  destruct (ok_handles _ Hw id c Ec) as (m' & s' & Em' & Es' & Hne).
  rewrite Em in Em'. rewrite Es in Es'. injection Em' as <-. injection Es' as <-.
  assert (∀ d', owners w !! ViewHandleCap.view_id m = Some d' → d' = handle_of m) as Hm.
  { intros d' E. apply (Hown m d' Hw Ec); [left|done]. }
  rewrite !remove_view_owners.
  - fold (owners w). rewrite !lookup_delete_Some. simpl. set_solver.
  - done.
  - intros d' E. apply (Hown s d' Hw Ec); [right; left|]. rewrite remove_view_owners in E by done.
    by rewrite lookup_delete_ne in E.
Qed.
(** The focus manager after a component has gone. *)
Definition unfocused (c : ComponentInfo.t) (m : FocusManager.t) : outcome FocusManager.t :=
  match ComponentInfo.subscription c with
  | Some sub => '(_, m) ← FocusManager.remove_subscription sub m; Return m
  | None => Return m
  end.
Lemma unfocused_stack c m m' :
  unfocused c m = Return m' → FocusManager.focus_stack m' ⊆ FocusManager.focus_stack m.
Proof.
  unfold unfocused. destruct (ComponentInfo.subscription c) as [sub|]; [|by intros [= <-]].
  destruct (FocusManager.remove_subscription sub m) as [[r1 m1]| |] eqn:E1; simpl; try done.
  intros [= <-]. by apply remove_subscription_stack in E1.
Qed.
(** What terminating a component does to the parts. *)
Record terminated (id : ComponentId.t) (c : ComponentInfo.t) (reason : ExitReason.t) (w w' : t) : Prop := {
  te_components : components w' = <[id := c <| ComponentInfo.state := (exit_state reason).1 |>
                                          <| ComponentInfo.exit_reason := Some reason |>]> (components w);
  te_instances : component_instances w' = delete id (component_instances w);
  te_layout : window_layout w' = WindowLayoutState.remove_component id (window_layout w);
  te_focus : unfocused c (focus_manager w) = Return (focus_manager w');
  te_views : owners w' = owner_of <$> ViewHost.views
    (match ComponentInfo.status_view c with Some h => (ViewHost.remove_view h
       (match ComponentInfo.main_view c with Some h => (ViewHost.remove_view h (view_host w)).2 | None => view_host w end)).2
     | None => match ComponentInfo.main_view c with Some h => (ViewHost.remove_view h (view_host w)).2 | None => view_host w end
     end);
  te_drawn : drawn w' = drawn w;
  te_time : next_timestamp w' = next_timestamp w + 1
}.
Lemma terminate_spec id reason w r w' :
  terminate_component id reason w = Return (r, w') →
  match components w !! id with
  | None => r = Err (WorkspaceError.ComponentNotFound id) ∧ w' = w
  | Some c => r = Ok tt ∧ terminated id c reason w w'
  end.
Proof.
  unfold terminate_component. destruct (components w !! id) as [c|] eqn:Ec; [|by intros [= <- <-]].
  destruct (exit_state reason) as [st cr] eqn:Est. cbv zeta.
  simpl (ComponentInfo.subscription _). simpl (ComponentInfo.main_view _). simpl (ComponentInfo.status_view _).
  simpl (focus_manager (w <| components ::= _ |> <| cancellation_cells ::= _ |>)).
  fold (unfocused c (focus_manager w)).
  destruct (unfocused c (focus_manager w)) as [fm| |] eqn:Ef; simpl; try done.
  unfold take_timestamp, add_u64, checked_add.
  destruct (ComponentInfo.main_view c) eqn:Em, (ComponentInfo.status_view c) eqn:Es; simpl;
    (destruct (_ <=? _); simpl; [|done]); intros [= <- <-]; (split; [done|]);
    split; rewrite ?Est, ?Em, ?Es; simpl; done.
Qed.

Lemma terminate_ok id reason w r w' : ws_ok w → terminate_component id reason w = Return (r, w') → ws_ok w'.
Proof.
  intros Hw E. apply terminate_spec in E. destruct (components w !! id) as [c|] eqn:Ec; [|by destruct E as [_ ->]].
  destruct E as [_ [Q1 Q2 Q3 Q4 Q5 Q6 Q7]]. destruct (ok_handles _ Hw id c Ec) as (m & s & Em & Es & _).
  rewrite Em, Es in Q5. eapply (terminate_core id c); [done|done| | | | | |exact Q1| |exact Q3| | |lia|lia]; try done.
  - apply bool_decide_eq_false. simpl. apply exit_not_running.
  - rewrite Q2. apply dom_delete_L.
  - by eapply unfocused_stack.
  - intros v d. rewrite Q5. by eapply close_views_owners.
Qed.

(** ** Launching *)

Lemma open_view_spec kind title which owner ws w r w' :
  open_view uuids kind title which owner ws w = Return (r, w') →
  ∃ h, r = Ok h ∧ components w' = components w ∧ component_instances w' = component_instances w
    ∧ window_layout w' = window_layout w ∧ focus_manager w' = focus_manager w
    ∧ ViewHandleCap.view_id h = ViewId.mk (uuids (S (drawn w)))
    ∧ owners w' = <[ViewHandleCap.view_id h := handle_of h]> (owners w)
    ∧ drawn w' = (drawn w + 3)%nat ∧ next_timestamp w' = next_timestamp w.
Proof.
  unfold open_view, draw. cbn [fst snd].
  unfold ViewHost.create_view, add_u64, checked_add. destruct (_ <=? _); simpl; [|done].
  unfold ViewHost.subscribe. simpl. rewrite lookup_insert_eq. unfold add_u64, checked_add.
  destruct (_ <=? _); simpl; [|done]. intros [= <- <-]. eexists. split; [done|]. simpl. split_and!; try done; try lia.
  unfold owners. simpl. rewrite !fmap_insert, insert_insert_eq. done.
Qed.
Lemma frame_new_editor c w e w' : new_editor uuids c w = (e, w') → frame w w'.
Proof.
  unfold new_editor. destruct (editor_io_context w) as [ctx|]; [|by intros [= <- <-]].
  destruct (match ComponentInfo.metadata c !! str "path" with Some _ => _ | None => _ end) as [[|x p]|];
    try by intros [= <- <-]. intros [= <- <-]. frame.
Qed.
Lemma frame_new_instance c ts w i w' : new_instance uuids c ts w = Return (i, w') → frame w w'.
Proof.
  unfold new_instance. destruct (ComponentInfo.component_type c).
  - destruct (new_editor uuids c w) as [e w1] eqn:E. intros [= <- <-]. by eapply frame_new_editor.
  - destruct (publish_console _ _ _ _ _ w) as [[c1 w1]| |] eqn:E; simpl; try done. intros [= <- <-].
    by eapply frame_console.
  - destruct (draw uuids w) as [u w1] eqn:E1. apply frame_draw in E1 as [E1 _].
    destruct (PipelineRuntime.new _) as [r| |]; simpl; try done.
    destruct (publish_console _ _ _ _ _ w1) as [[c1 w2]| |] eqn:E; simpl; try done. intros [= <- <-].
    etrans; [exact E1|]. by eapply frame_console.
  - destruct (expect _); simpl; try done. by intros [= <- <-].
  - destruct (publish_console _ _ _ _ _ w) as [[c1 w1]| |] eqn:E; simpl; try done. intros [= <- <-].
    by eapply frame_console.
Qed.

(** A new component with two new views, a new subscription and a new tab. *)
Lemma launch_core id c m s w w' :
  ws_ok w → components w !! id = None →
  ComponentInfo.id c = id → ComponentInfo.is_running c = true →
  ComponentInfo.main_view c = Some m → ComponentInfo.status_view c = Some s →
  ViewHandleCap.view_id m ≠ ViewHandleCap.view_id s →
  owners w !! ViewHandleCap.view_id m = None → owners w !! ViewHandleCap.view_id s = None →
  (∀ id' c' h, components w !! id' = Some c' → h ∈ handles c' →
     ViewHandleCap.view_id h ≠ ViewHandleCap.view_id m ∧ ViewHandleCap.view_id h ≠ ViewHandleCap.view_id s) →
  (∀ h, h ∈ [m; s] → ∃ k, (k < drawn w')%nat ∧ ViewHandleCap.view_id h = ViewId.mk (uuids k)) →
  (∃ k, (k < drawn w')%nat ∧ id = ComponentId.mk (uuids k)) →
  (∀ sub, ComponentInfo.subscription c = Some sub → InputSubscriptionCap.id sub < next_timestamp w'
     ∧ next_timestamp w ≤ InputSubscriptionCap.id sub) →
  components w' = <[id := c]> (components w) →
  dom (component_instances w') = {[id]} ∪ dom (component_instances w) →
  window_layout w' = WindowLayoutState.add_component_tab id (window_layout w) →
  focus_manager w' = focus_manager w →
  owners w' = <[ViewHandleCap.view_id s := handle_of s]> (<[ViewHandleCap.view_id m := handle_of m]> (owners w)) →
  (drawn w ≤ drawn w')%nat → next_timestamp w ≤ next_timestamp w' → ws_ok w'.
Proof.
  intros Hw Hnew Hid Hrun Em Es Hne Hom Hos Hfresh Hvk Hk Hsub Ec Ei El Ef Eo Hdr Hts.
  assert (∀ i x, components w' !! i = Some x ↔ i = id ∧ x = c ∨ components w !! i = Some x) as Hback.
  { intros i x. rewrite Ec, lookup_insert_Some. split; [naive_solver|].
    intros [[-> ->]|Hx]; [naive_solver|]. right. split; [|done]. intros <-. congruence. }
  assert (∀ i, running w' i ↔ i = id ∨ running w i) as Hr.
  { intros i. unfold running. setoid_rewrite Hback. naive_solver. }
  destruct (LayoutSpec.add_spec id (window_layout w) (ok_layout _ Hw)) as (Hl & Hcs & _).
  assert (id ∉ LayoutSpec.components (window_layout w)) as Hnt.
  { rewrite (ok_tabs _ Hw). intros (x & Hx & _). congruence. }
  rewrite bool_decide_eq_false_2 in Hcs by done. pose proof (handles_spec c m s Em Es) as Hh.
  split.
  - intros i x [[-> ->]|Hx]%Hback; [done|]. destruct (ok_id _ Hw i x Hx) as (? & k & ? & ?).
    split; [done|]. exists k. split; [lia|done].
  - intros i. rewrite Ei, Hr, <-(ok_instance _ Hw). set_solver.
  - by rewrite El.
  - intros i. rewrite El, Hcs, elem_of_cons, Hr, (ok_tabs _ Hw). done.
  - intros i x t0 [[-> ->]|Hx]%Hback Ht; [by apply Hsub|]. pose proof (ok_sub _ Hw i x t0 Hx Ht). lia.
  - intros i x t0 i' x' t' [[-> ->]|Hx]%Hback [[-> ->]|Hx']%Hback Ht Ht' E; [done| | |by eapply (ok_sub_inj _ Hw)].
    + pose proof (ok_sub _ Hw i' x' t' Hx' Ht'). apply Hsub in Ht. lia.
    + pose proof (ok_sub _ Hw i x t0 Hx Ht). apply Hsub in Ht'. lia.
  - rewrite Ef. eapply Forall_impl; [exact (ok_stack _ Hw)|]. intros t0 (i & x & Hx & Ht). exists i, x.
    split; [|done]. apply Hback. by right.
  - intros i x [[-> ->]|Hx]%Hback; [eauto 10|]. by apply (ok_handles _ Hw i).
  - intros i x h [[-> ->]|Hx]%Hback Hin; [apply Hvk; by rewrite Hh in Hin|].
    destruct (ok_drawn _ Hw i x h Hx Hin) as (k & ? & ?). exists k. split; [lia|done].
  - intros i x h i' x' h' [[-> ->]|Hx]%Hback [[-> ->]|Hx']%Hback Hin Hin' E; [done| | |by eapply (ok_disjoint _ Hw)].
    + rewrite Hh in Hin. destruct (Hfresh i' x' h' Hx' Hin') as [? ?]. set_solver.
    + rewrite Hh in Hin'. destruct (Hfresh i x h Hx Hin) as [? ?]. set_solver.
  - intros v d. rewrite Eo, !lookup_insert_Some, (ok_views _ Hw). setoid_rewrite Hback. split.
    + intros [[<- <-]|[Hvs [[<- <-]|[Hvm (i & x & h & Hx & Hx2)]]]].
      * exists id, c, s. rewrite Hh. split_and!; try done; [by left|]. right. left.
      * exists id, c, m. rewrite Hh. split_and!; try done; [by left|]. left.
      * exists i, x, h. naive_solver.
    + intros (i & x & h & [[-> ->]|Hx] & Hx1 & Hin & -> & ->).
      * rewrite Hh in Hin. apply elem_of_cons in Hin as [->|Hin%list_elem_of_singleton]; [|subst; by left].
        right. split; [done|]. by left.
      * destruct (Hfresh i x h Hx Hin) as [? ?]. right. split; [done|]. right. split; [done|]. by exists i, x, h.
Qed.

(** From here on no identifier is drawn twice. *)
Context (uuids_distinct : Inj (=) (=) uuids).

Lemma fresh_component w k : ws_ok w → (drawn w ≤ k)%nat → components w !! ComponentId.mk (uuids k) = None.
Proof.
  intros Hw Hk. destruct (components w !! _) as [c|] eqn:E; [|done]. exfalso.
  destruct (ok_id _ Hw _ c E) as (_ & k' & Hk' & [= E']%eq_sym). apply uuids_distinct in E'. lia.
Qed.
Lemma fresh_view w k id c h :
  ws_ok w → (drawn w ≤ k)%nat → components w !! id = Some c → h ∈ handles c →
  ViewHandleCap.view_id h ≠ ViewId.mk (uuids k).
Proof.
  intros Hw Hk Hc Hh E. destruct (ok_drawn _ Hw id c h Hc Hh) as (k' & Hk' & E'). rewrite E in E'.
  injection E' as E'. apply uuids_distinct in E'. lia.
Qed.
Lemma fresh_owner w k : ws_ok w → (drawn w ≤ k)%nat → owners w !! ViewId.mk (uuids k) = None.
Proof.
  intros Hw Hk. destruct (owners w !! _) as [d|] eqn:E; [|done]. exfalso.
  apply (ok_views _ Hw) in E as (id & c & h & Hc & _ & Hh & E & _). by eapply (fresh_view w k).
Qed.

Lemma start_ok c ts w0 w r w' :
  ws_ok w0 → frame w0 w →
  (∃ k, (drawn w0 ≤ k < drawn w)%nat ∧ ComponentInfo.id c = ComponentId.mk (uuids k)) →
  ComponentInfo.is_running c = true →
  (∀ sub, ComponentInfo.subscription c = Some sub → InputSubscriptionCap.id sub < next_timestamp w
     ∧ next_timestamp w0 ≤ InputSubscriptionCap.id sub) →
  start_component uuids c ts w = Return (r, w') → ws_ok w'.
Proof.
  intros Hw0 Hfr (k & Hk & Hid) Hrun Hsub. unfold start_component.
  destruct (draw uuids w) as [task w1] eqn:E1. apply frame_draw in E1 as (F1 & _ & D1).
  destruct (draw uuids w1) as [wt w2] eqn:E2. apply frame_draw in E2 as (F2 & _ & D2).
  destruct (open_view _ _ _ _ _ _ w2) as [[r3 w3]| |] eqn:E3; simpl; try done.
  apply open_view_spec in E3 as (m & -> & A1 & A2 & A3 & A4 & A5 & A6 & A7 & A8). simpl.
  destruct (open_view _ _ _ _ _ _ w3) as [[r4 w4]| |] eqn:E4; simpl; try done.
  apply open_view_spec in E4 as (s & -> & B1 & B2 & B3 & B4 & B5 & B6 & B7 & B8). simpl.
  destruct (new_instance _ _ _ w4) as [[i w5]| |] eqn:E5; simpl; try done. apply frame_new_instance in E5 as F5.
  set (c' := ComponentInfo.with_status_view s (ComponentInfo.with_main_view m c)).
  change (ComponentInfo.id (ComponentInfo.with_status_view s (ComponentInfo.with_main_view m c)))
    with (ComponentInfo.id c).
  set (w6 := w5 <| audit_trail ::= _ |> <| components ::= _ |> <| component_instances ::= _ |> <| window_layout ::= _ |>).
  assert (frame w0 w2) as F02 by (etrans; [exact Hfr|]; by etrans).
  assert (ws_ok w6) as Hw6.
  { destruct F5 as [C1 C2 C3 C4 C5 C6 C7], F02 as [G1 G2 G3 G4 G5 G6 G7].
    assert (∀ n n', n ≠ n' → ViewId.mk (uuids n) ≠ ViewId.mk (uuids n')) as Hinj.
    { intros n n' Hn [= En]. by apply uuids_distinct in En. }
    apply (launch_core (ComponentInfo.id c) c' m s w0 w6); try done.
    - rewrite Hid. apply fresh_component; [done|lia].
    - rewrite A5, B5. apply Hinj. lia.
    - rewrite A5. apply fresh_owner; [done|lia].
    - rewrite B5. apply fresh_owner; [done|lia].
    - intros id' x h Hx Hh. rewrite A5, B5. split; (eapply fresh_view; [done| |done|done]); lia.
    - intros h [->|Hin%list_elem_of_singleton]%elem_of_cons; [|subst h]; eexists; (split; [|done]); unfold w6; simpl; lia.
    - exists k. split; [|done]. unfold w6. simpl. pose proof (fr_drawn _ _ F1). lia.
    - intros sub Es. destruct (Hsub sub Es). split; [|done]. unfold w6. simpl.
      pose proof (fr_time _ _ F1). pose proof (fr_time _ _ F2). lia.
    - unfold w6. simpl. by rewrite C1, B1, A1, G1.
    - unfold w6. simpl. by rewrite dom_insert_L, C2, B2, A2, G2.
    - unfold w6. simpl. by rewrite C3, B3, A3, G3.
    - unfold w6. simpl. by rewrite C4, B4, A4, G4.
    - transitivity (owners w5); [done|]. by rewrite C5, B6, A6, G5.
    - unfold w6. simpl. lia.
    - unfold w6. simpl. lia. }
  destruct (ComponentInfo.focusable c); [|by intros [= <- <-]].
  destruct (focus_component _ w6) as [[r7 w7]| |] eqn:E7; simpl; try done. intros [= <- <-]. by eapply focus_ok.
Qed.

Lemma fold_metadata_fields (l : list (Str.t * Str.t)) c :
  let c' := foldl (λ c kv, ComponentInfo.with_metadata kv.1 kv.2 c) c l in
  ComponentInfo.id c' = ComponentInfo.id c ∧ ComponentInfo.state c' = ComponentInfo.state c
  ∧ ComponentInfo.subscription c' = ComponentInfo.subscription c.
Proof. revert c. induction l as [|kv l IH]; intros c; [done|]. apply (IH (ComponentInfo.with_metadata kv.1 kv.2 c)). Qed.

Lemma launch_ok config w r w' : ws_ok w → launch_component uuids config w = Return (r, w') → ws_ok w'.
Proof.
  intros Hw. unfold launch_component. destruct (validate_launch_config config w); [|by intros [= <- <-]].
  destruct (take_timestamp w) as [[ts w1]| |] eqn:E1; cbn [mbind outcome_bind]; try done.
  apply frame_timestamp in E1 as (F1 & -> & T1).
  unfold new_identity. destruct (draw uuids w1) as [u w2] eqn:E2. apply frame_draw in E2 as (F2 & _ & D2).
  cbv beta iota zeta. set (identity := match LaunchConfig.budget config with Some _ => _ | None => _ end).
  destruct (refusal _ _ w2).
  { intros [= <- <-]. eapply frame_ok; [|exact Hw]. by etrans. }
  unfold new_component. destruct (draw uuids w2) as [u3 w3] eqn:E3. apply frame_draw in E3 as (F3 & -> & D3).
  destruct (CancellationSource.new _) as [source cells']. cbv beta iota zeta.
  set (c := foldl _ _ _). set (w4 := w3 <| cancellation_cells := cells' |>).
  assert (frame w w4) as F4.
  { etrans; [exact F1|]. etrans; [exact F2|]. etrans; [exact F3|]. frame. }
  destruct (fold_metadata_fields (hm_iter (LaunchConfig.metadata config))
    (ComponentInfo.new (ComponentId.mk (uuids (drawn w2))) source (LaunchConfig.component_type config)
       identity (LaunchConfig.focusable config) (LaunchConfig.name config))) as (Hid & Hst & Hsub).
  fold c in Hid, Hst, Hsub. simpl in Hid, Hst, Hsub.
  assert (∃ k, (drawn w ≤ k < drawn w4)%nat ∧ ComponentInfo.id c = ComponentId.mk (uuids k)) as Hk.
  { exists (drawn w2). split; [|done]. unfold w4. simpl.
    pose proof (fr_drawn _ _ F1). pose proof (fr_drawn _ _ F2). lia. }
  assert (ComponentInfo.is_running c = true) as Hrun.
  { unfold ComponentInfo.is_running. by rewrite Hst. }
  clearbody c w4. destruct (LaunchConfig.focusable config).
  - unfold subscribe_input. destruct (take_timestamp w4) as [[ts5 w5]| |] eqn:E5; cbn [mbind outcome_bind]; try done.
    apply frame_timestamp in E5 as (F5 & -> & T5).
    apply (start_ok _ _ w); try done.
    + etrans; [exact F4|]. etrans; [exact F5|]. frame.
    + destruct Hk as (k & Hk & ?). exists k. split; [|done]. simpl. pose proof (fr_drawn _ _ F5). lia.
    + intros sub [= <-]. simpl. pose proof (fr_time _ _ F4). lia.
  - apply (start_ok _ _ w); try done. intros sub Es. by rewrite Hsub in Es.
Qed.

Lemma launch_all_ok manifest plan report w report' w' :
  ws_ok w → launch_all uuids manifest plan report w = Return (report', w') → ws_ok w'.
Proof.
  revert report w. induction plan as [|spec plan IH]; intros report w Hw; cbn [launch_all]; [by intros [= <- <-]|].
  destruct (launch_component _ _ w) as [[r w1]| |] eqn:E; cbn [mbind outcome_bind]; try done.
  apply IH. by eapply launch_ok.
Qed.
Lemma package_ok describe manifest w r w' :
  ws_ok w → launch_package uuids describe manifest w = Return (r, w') → ws_ok w'.
Proof.
  intros Hw. unfold launch_package. destruct (ComponentLoader.build_launch_plan manifest) as [plan|]; [|by intros [= <- <-]].
  destruct (launch_all _ _ _ _ w) as [[report w1]| |] eqn:E; cbn [mbind outcome_bind]; try done.
  intros [= <- <-]. by eapply launch_all_ok.
Qed.

(** ** Settings, status and commands *)

Lemma frame_apply_setting key w : frame w (apply_setting key w).
Proof.
  unfold apply_setting. destruct (get_setting key w) as [v|]; [|done].
  repeat (case_match; [|]); destruct v; simpl; try done; apply frame_last_action.
Qed.
Lemma frame_set_setting key v w : frame w (set_setting key v w).
Proof. unfold set_setting. etrans; [|apply frame_apply_setting]. frame. Qed.
Lemma frame_reset_setting key w : frame w (reset_setting key w).2.
Proof.
  unfold reset_setting. destruct (SettingsRegistry.reset_to_default _ _ _) as [[] s]; simpl; [|frame].
  etrans; [|apply frame_apply_setting]. frame.
Qed.
Lemma frame_save_settings w : frame w (save_settings uuids w).2.
Proof.
  unfold save_settings. destruct (serialize_overrides _) as [bytes|]; [|done].
  destruct (editor_io_context w) as [context|]; [|apply frame_last_action].
  destruct (draw_editor uuids w) as [d w1] eqn:E. apply frame_draw_editor in E.
  destruct (resolve_settings_object_for_write _ context) as [[o|e] context']; [|etrans; [exact E|]; frame].
  destruct (write_settings _ _ _ _ _) as [[[u|e]|e] st]; etrans; [exact E| |exact E| |exact E|];
    (etrans; [|apply frame_last_action]) || idtac; frame.
Qed.
Lemma frame_save_boot_profile w : frame w (save_boot_profile uuids w).2.
Proof.
  unfold save_boot_profile, draw. destruct (BootProfileManager.save _ _ _ _) as [r s']. frame.
Qed.
Lemma frame_breadcrumbs w : frame w (update_breadcrumbs w).
Proof.
  unfold update_breadcrumbs. destruct (get_focused_component w) as [id|]; [|frame].
  destruct (get_component id w); [frame|done].
Qed.
Lemma frame_status w : frame w (update_workspace_status w).
Proof.
  unfold update_workspace_status. destruct (match _ with Some _ => _ | None => _ end) as [a u].
  etrans; [|apply frame_breadcrumbs]. frame.
Qed.

Lemma answer_ok what m ok r w' :
  (∀ r w', m = Return (r, w') → ws_ok w') → focus_answer what m ok = Return (r, w') → ws_ok w'.
Proof. unfold focus_answer. destruct m as [[r1 w1]| |]; simpl; try done. intros Hm [= <- <-]. by eapply Hm. Qed.
Lemma open_ok ty args w r w' : ws_ok w → cmd_open uuids ty args w = Return (r, w') → ws_ok w'.
Proof.
  intros Hw. unfold cmd_open. destruct (_ && _); [by intros [= <- <-]|].
  destruct (launch_component _ _ w) as [[[id|e] w1]| |] eqn:E; cbn [mbind outcome_bind]; try done;
    apply launch_ok in E; try done; intros [= <- <-]; [|done].
  eapply frame_ok; [|exact E]. destruct ty; try done. destruct args; [done|]. frame.
Qed.
Lemma command_inner_ok command w r w' :
  ws_ok w → execute_command_inner uuids command w = Return (r, w') → ws_ok w'.
Proof.
  intros Hw. destruct command; cbn [execute_command_inner]; try by intros [= <- <-].
  - by apply open_ok.
  - apply answer_ok. intros. by eapply focus_ok.
  - apply answer_ok. intros. by eapply cycle_ok.
  - apply answer_ok. intros. by eapply cycle_ok.
  - apply answer_ok. intros. by eapply terminate_ok.
  - unfold cmd_settings_set. destruct (read_value _ _ _); intros [= <- <-]; [|done].
    eapply frame_ok; [apply frame_set_setting|done].
  - unfold cmd_settings_reset. pose proof (frame_reset_setting key w) as F.
    destruct (reset_setting key w) as [[] w1]; intros [= <- <-]; by eapply frame_ok.
  - intros [= <- <-]. eapply frame_ok; [apply frame_save_settings|done].
  - unfold cmd_open_file_picker. destruct (launch_component _ _ w) as [[r1 w1]| |] eqn:E; cbn [mbind outcome_bind]; try done.
    intros [= <- <-]. by eapply launch_ok.
  - intros [= <- <-]. eapply frame_ok; [|done]. frame.
  - intros [= <- <-]. eapply frame_ok; [apply frame_save_boot_profile|done].
Qed.
Lemma ws_command_ok command w r w' : ws_ok w → execute_command uuids command w = Return (r, w') → ws_ok w'.
Proof.
  intros Hw. unfold execute_command.
  destruct (execute_command_inner _ command w) as [[r1 w1]| |] eqn:E; cbn [mbind outcome_bind]; try done.
  apply command_inner_ok in E; [|done]. intros [= <- <-]. eapply frame_ok; [|exact E].
  etrans; [|apply frame_status]. destruct r1; frame.
Qed.

(** ** Actions and input *)

Lemma frame_append_cli id lines w w' : append_cli_output id lines w = Return w' → frame w w'.
Proof.
  unfold append_cli_output. destruct (take_timestamp w) as [[ts w1]| |] eqn:E1; cbn [mbind outcome_bind]; try done.
  apply frame_timestamp in E1 as (F1 & _).
  destruct (component_instances w1 !! id) as [[]|] eqn:Ei; try (by intros [= <-]).
  destruct (publish_console _ _ _ _ _ w1) as [[c1 w2]| |] eqn:E2; cbn [mbind outcome_bind]; try done.
  apply frame_console in E2 as F2. intros [= <-]. etrans; [exact F1|]. etrans; [exact F2|]. apply frame_instance.
  apply elem_of_dom. rewrite (fr_instances _ _ F2). apply elem_of_dom. by eexists.
Qed.
Lemma command_mode_ok w b w' : ws_ok w → enter_command_mode uuids w = Return (b, w') → ws_ok w'.
Proof.
  intros Hw. unfold enter_command_mode.
  destruct (command_palette_preview _ _ w) as [[[lines shown] total]| |]; cbn [mbind outcome_bind]; try done.
  destruct (total =? 0)%nat; [intros [= <- <-]; eapply frame_ok; [apply frame_last_action|done]|].
  destruct (match find_running_component_of_type _ w with Some _ => _ | None => _ end) as [[o w1]| |] eqn:E;
    cbn [mbind outcome_bind]; try done.
  assert (ws_ok w1) as Hw1.
  { destruct (find_running_component_of_type _ w); [by injection E as <- <-|].
    destruct (launch_component _ _ w) as [[r w2]| |] eqn:El; cbn [mbind outcome_bind] in E; try done.
    injection E as <- <-. by eapply launch_ok. }
  destruct o as [id|]; [|intros [= <- <-]; eapply frame_ok; [apply frame_last_action|done]].
  destruct (focus_component id w1) as [[r w2]| |] eqn:Ef; cbn [mbind outcome_bind]; try done.
  destruct (append_cli_output id lines w2) as [w3| |] eqn:Ea; cbn [mbind outcome_bind]; try done.
  intros [= <- <-]. eapply frame_ok; [apply frame_last_action|]. eapply frame_ok; [by eapply frame_append_cli|].
  by eapply focus_ok.
Qed.
Lemma frame_save_action w b w' : save_action uuids w = Return (b, w') → frame w w'.
Proof.
  unfold save_action. destruct (get_focused_component w) as [id|]; [|intros [= <- <-]; apply frame_last_action].
  destruct (negb _); [intros [= <- <-]; apply frame_last_action|].
  destruct (take_timestamp w) as [[ts w1]| |] eqn:E1; cbn [mbind outcome_bind]; try done.
  apply frame_timestamp in E1 as (F1 & _).
  assert (∀ s, frame w (last_action s w1)) as Hl by (intros; etrans; [exact F1|apply frame_last_action]).
  destruct (component_instances w1 !! id) as [[e| | | |]|] eqn:Ei; try (intros [= <- <-]; apply Hl).
  destruct (draw_editor uuids w1) as [d w2] eqn:E2. apply frame_draw_editor in E2 as F2.
  assert (is_Some (component_instances w2 !! id)) as Hin.
  { apply elem_of_dom. rewrite (fr_instances _ _ F2). apply elem_of_dom. by eexists. }
  destruct (ViEditor.save_current_document d e) as [[v|err] e1].
  - destruct (ViEditor.publish_views _ _ _) as [[r [e2 host]]| |] eqn:Ep; cbn [mbind outcome_bind]; try done.
    apply editor_publish_owners in Ep. intros [= <- <-]. etrans; [exact F1|]. etrans; [exact F2|].
    etrans; [|apply frame_last_action]. etrans; [by apply (frame_host host)|]. by apply frame_instance.
  - intros [= <- <-]. etrans; [exact F1|]. etrans; [exact F2|]. etrans; [|apply frame_last_action]. by apply frame_instance.
Qed.
Lemma terminate_all_ok ids w w' : ws_ok w → terminate_all ids w = Return w' → ws_ok w'.
Proof.
  revert w. induction ids as [|id ids IH]; intros w Hw; cbn [terminate_all fold_outcome]; [by intros [= <-]|].
  destruct (terminate_component id _ w) as [[r w1]| |] eqn:E; cbn [mbind outcome_bind]; try done.
  apply IH. by eapply terminate_ok.
Qed.
Lemma focus_action_ok m b w' :
  (∀ r w', m = Return (r, w') → ws_ok w') → focus_action m = Return (b, w') → ws_ok w'.
Proof. unfold focus_action. destruct m as [[r1 w1]| |]; simpl; try done. intros Hm [= <- <-]. by eapply Hm. Qed.
Lemma action_ok a w b w' : ws_ok w → execute_action uuids a w = Return (b, w') → ws_ok w'.
Proof.
  intros Hw. destruct a; cbn [execute_action].
  - apply focus_action_ok. intros r w1. destruct (_ <? _)%nat; by apply cycle_ok.
  - destruct (head _) as [id|]; [|by intros [= <- <-]]. apply focus_action_ok. intros. by eapply focus_ok.
  - destruct (last _) as [id|]; [|by intros [= <- <-]]. apply focus_action_ok. intros. by eapply focus_ok.
  - intros E. eapply frame_ok; [by eapply frame_save_action|done].
  - destruct (terminate_all _ w) as [w1| |] eqn:E; cbn [mbind outcome_bind]; try done. intros [= <- <-].
    eapply frame_ok; [apply frame_last_action|]. by eapply terminate_all_ok.
  - by apply command_mode_ok.
  - by intros [= <- <-].
Qed.

Lemma cli_command_ok id command w w' :
  ws_ok w → execute_cli_component_command uuids id command w = Return w' → ws_ok w'.
Proof.
  intros Hw. unfold execute_cli_component_command. destruct (Str.trim command) as [|ch rest]; [by intros [= <-]|].
  destruct (parse_command _) as [p| |]; cbn [mbind outcome_bind]; try done.
  destruct p as [c|e]; cbn [mbind outcome_bind].
  - destruct (execute_command _ c w) as [[r w1]| |] eqn:E; cbn [mbind outcome_bind]; try done.
    intros Ea. eapply frame_ok; [by eapply frame_append_cli|]. by eapply ws_command_ok.
  - intros Ea. eapply frame_ok; [by eapply frame_append_cli|done].
Qed.
(** A console that publishes and stays in its place. *)
Lemma frame_console_put hs ts id label c w c' w' (mk : InlineConsole.t → ComponentInstance.t) :
  is_Some (component_instances w !! id) → publish_console hs ts id label c w = Return (c', w') →
  frame w (w' <| component_instances ::= <[id := mk c']> |>).
Proof.
  intros Hi E. apply frame_console in E as F. etrans; [exact F|]. apply frame_instance.
  apply elem_of_dom. rewrite (fr_instances _ _ F). by apply elem_of_dom.
Qed.
Lemma frame_custom_command id command w w' :
  execute_custom_component_command id command w = Return w' → frame w w'.
Proof.
  unfold execute_custom_component_command. destruct (Str.trim command) as [|ch rest]; [by intros [= <-]|].
  destruct (take_timestamp w) as [[ts w1]| |] eqn:E1; cbn [mbind outcome_bind]; try done.
  apply frame_timestamp in E1 as (F1 & _).
  destruct (component_instances w1 !! id) as [[| | | |r]|] eqn:Ei; try (by intros [= <-]).
  destruct (publish_console _ _ _ _ _ w1) as [[c1 w2]| |] eqn:E2; cbn [mbind outcome_bind]; try done.
  intros [= <-]. etrans; [exact F1|].
  by apply (frame_console_put _ _ _ _ _ _ _ _
    (λ c, ComponentInstance.Custom (r <| CustomComponentRuntime.console := c |>)) (mk_is_Some _ _ Ei) E2).
Qed.
Lemma pipeline_run_counts command r n lines r' n' :
  PipelineRuntime.run_pipeline_command uuids reply_ids command r n = Return (lines, (r', n')) → (n ≤ n')%nat.
Proof.
  unfold PipelineRuntime.run_pipeline_command. destruct (split_whitespace command) as [|op parts]; [by intros [= <- <- <-]|].
  repeat (case_bool_decide; [by intros [= <- <- <-]|]); case_bool_decide; [|by intros [= <- <- <-]].
  unfold PipelineRuntime.run. destruct (match parts with [] => _ | _ => _ end) as [service rest].
  destruct (PipelineHarnessKernel.ensure_echo_handler _ _ _) as [[] k]; [|intros [= <- <- <-]; lia].
  destruct (PipelineExecutor.execute _ _ _ _ _ _) as [[r1 [x1 [k1 n1]]]| |] eqn:E; cbn [mbind outcome_bind]; try done.
  apply execute_counts in E. simpl in E. intros [= <- <- <-]. lia.
Qed.
Lemma frame_pipeline_command id command w w' :
  execute_pipeline_component_command uuids reply_ids id command w = Return w' → frame w w'.
Proof.
  unfold execute_pipeline_component_command. destruct (Str.trim command) as [|ch rest]; [by intros [= <-]|].
  destruct (take_timestamp w) as [[ts w1]| |] eqn:E1; cbn [mbind outcome_bind]; try done.
  apply frame_timestamp in E1 as (F1 & _).
  destruct (component_instances w1 !! id) as [[| | | r|]|] eqn:Ei; try (by intros [= <-]).
  destruct (PipelineRuntime.run_pipeline_command _ _ _ _ _) as [[lines [r1 n]]| |] eqn:Er; cbn [mbind outcome_bind]; try done.
  apply pipeline_run_counts in Er.
  set (w1' := w1 <| drawn := n |>) in *. assert (frame w1 w1') as F2 by (split; simpl; done).
  assert (is_Some (component_instances w1' !! id)) as Hin by by eexists. clearbody w1'.
  destruct (publish_console _ _ _ _ _ _) as [[c1 w2]| |] eqn:E2; cbn [mbind outcome_bind]; try done.
  intros [= <-]. etrans; [exact F1|]. etrans; [exact F2|].
  by apply (frame_console_put _ _ _ _ _ _ _ _
    (λ c, ComponentInstance.Pipeline (r1 <| PipelineRuntime.console := c |>)) Hin E2).
Qed.

Lemma picker_ok id event ts picker w w' :
  ws_ok w → is_Some (component_instances w !! id) → picker_input uuids id event ts picker w = Return w' → ws_ok w'.
Proof.
  intros Hw Hi. unfold picker_input. set (context := editor_io_context w ≫= EditorIoContext.files). clearbody context.
  destruct (FilePicker.process_input _ _ _) as [[r p]| |]; cbn [mbind outcome_bind]; try done.
  set (w1 := w <| component_instances ::= _ |>).
  assert (ws_ok w1) as Hw1 by (eapply frame_ok; [by apply frame_instance|done]). clearbody w1.
  destruct (match components w1 !! id ≫= ComponentInfo.views with Some _ => _ | None => _ end) as [w2| |] eqn:E2;
    cbn [mbind outcome_bind]; try done.
  assert (ws_ok w2) as Hw2.
  { destruct (components w1 !! id ≫= ComponentInfo.views) as [[m s]|]; [|by injection E2 as <-].
    destruct (build_file_picker_breadcrumb _ _) as [b| |]; cbn [mbind outcome_bind] in E2; try done.
    destruct (ViewHost.publish_frame m _ _) as [[r1 h1]| |] eqn:P1; cbn [mbind outcome_bind] in E2; try done.
    destruct (ViewHost.publish_frame s _ _) as [[r2 h2]| |] eqn:P2; cbn [mbind outcome_bind] in E2; try done.
    injection E2 as <-. eapply frame_ok; [|exact Hw1]. apply frame_host.
    by rewrite (publish_owners _ _ _ _ _ P2), (publish_owners _ _ _ _ _ P1). }
  destruct r as [o name| |].
  - destruct (terminate_component id _ w2) as [[r3 w3]| |] eqn:E3; cbn [mbind outcome_bind]; try done.
    destruct (resolve_relative_path_from_context _ _) as [path| |]; cbn [mbind outcome_bind]; try done.
    destruct (execute_command _ _ w3) as [[r4 w4]| |] eqn:E4; cbn [mbind outcome_bind]; try done.
    intros [= <-]. eapply ws_command_ok; [|exact E4]. by eapply terminate_ok.
  - destruct (terminate_component id _ w2) as [[r3 w3]| |] eqn:E3; cbn [mbind outcome_bind]; try done.
    intros [= <-]. by eapply terminate_ok.
  - by intros [= <-].
Qed.
Lemma frame_editor_input id d event ts (e : ViEditor.t StorageEditorIo.t) w w' :
  is_Some (component_instances w !! id) →
  ('(r, e) ← ViEditor.process_input d event e;
   match r with
   | Ok _ => '(_, (e, host)) ← ViEditor.publish_views (view_host w) ts e;
             Return (w <| view_host := host |> <| component_instances ::= <[id := ComponentInstance.Editor e]> |>)
   | Err _ => Return (w <| component_instances ::= <[id := ComponentInstance.Editor e]> |>)
   end) = Return w' → frame w w'.
Proof.
  intros Hi. destruct (ViEditor.process_input d event e) as [[[a|err] e1]| |]; cbn [mbind outcome_bind]; try done.
  - destruct (ViEditor.publish_views _ _ _) as [[r1 [e2 host]]| |] eqn:E; cbn [mbind outcome_bind]; try done.
    apply editor_publish_owners in E. intros [= <-]. etrans; [by apply (frame_host host)|]. by apply frame_instance.
  - intros [= <-]. by apply frame_instance.
Qed.
Lemma component_input_ok id event w w' :
  ws_ok w → component_input uuids reply_ids id event w = Return w' → ws_ok w'.
Proof.
  intros Hw. unfold component_input. destruct (take_timestamp w) as [[ts w1]| |] eqn:E1; cbn [mbind outcome_bind]; try done.
  apply frame_timestamp in E1 as (F1 & _). apply (frame_ok _ _ F1) in Hw.
  destruct (component_instances w1 !! id) as [[e|c|p|r|r]|] eqn:Ei; [| | | | |by intros [= <-]].
  - destruct (draw_editor uuids w1) as [d w2] eqn:E2. apply frame_draw_editor in E2 as F2.
    intros E. apply frame_editor_input in E; [|injection E2 as <- <-; by eexists].
    eapply frame_ok; [exact E|]. by eapply frame_ok.
  - destruct (InlineConsole.process_input _ _) as [[o c1]| |]; cbn [mbind outcome_bind]; try done.
    destruct (publish_console _ _ _ _ _ w1) as [[c2 w2]| |] eqn:E2; cbn [mbind outcome_bind]; try done.
    apply (frame_console_put _ _ _ _ _ _ _ _ ComponentInstance.Cli (mk_is_Some _ _ Ei)) in E2.
    apply (frame_ok _ _ E2) in Hw. destruct o; [|by intros [= <-]]. by apply cli_command_ok.
  - by apply picker_ok.
  - destruct (InlineConsole.process_input _ _) as [[o c1]| |]; cbn [mbind outcome_bind]; try done.
    destruct (publish_console _ _ _ _ _ w1) as [[c2 w2]| |] eqn:E2; cbn [mbind outcome_bind]; try done.
    apply (frame_console_put _ _ _ _ _ _ _ _
      (λ c, ComponentInstance.Pipeline (r <| PipelineRuntime.console := c |>)) (mk_is_Some _ _ Ei)) in E2.
    apply (frame_ok _ _ E2) in Hw. destruct o; [|by intros [= <-]].
    intros E. eapply frame_ok; [by eapply frame_pipeline_command|done].
  - destruct (InlineConsole.process_input _ _) as [[o c1]| |]; cbn [mbind outcome_bind]; try done.
    destruct (publish_console _ _ _ _ _ w1) as [[c2 w2]| |] eqn:E2; cbn [mbind outcome_bind]; try done.
    apply (frame_console_put _ _ _ _ _ _ _ _
      (λ c, ComponentInstance.Custom (r <| CustomComponentRuntime.console := c |>)) (mk_is_Some _ _ Ei)) in E2.
    apply (frame_ok _ _ E2) in Hw. destruct o; [|by intros [= <-]].
    intros E. eapply frame_ok; [by eapply frame_custom_command|done].
Qed.
Lemma route_ok event w r w' : ws_ok w → route_input uuids reply_ids event w = Return (r, w') → ws_ok w'.
Proof.
  intros Hw. unfold route_input. destruct (InputEvent.as_key event) as [key|]; [|by intros [= <- <-]].
  cbv zeta. set (w1 := w <| key_routing_debug ::= _ |>).
  assert (ws_ok w1) as Hw1 by (eapply frame_ok; [|exact Hw]; frame). clearbody w1.
  destruct (match KeyBindingManager.get_action _ _ with Some _ => _ | None => _ end) as [[b w2]| |] eqn:E2;
    cbn [mbind outcome_bind]; try done.
  assert (ws_ok w2) as Hw2.
  { destruct (KeyBindingManager.get_action _ _); [by eapply action_ok|by injection E2 as <- <-]. }
  set (w3 := w2 <| key_routing_debug ::= _ |>).
  assert (ws_ok w3) as Hw3 by (eapply frame_ok; [|exact Hw2]; frame). clearbody w3.
  destruct b; [by intros [= <- <-]|].
  destruct (FocusManager.route_event _ _) as [[sub|]|]; try (by intros [= <- <-]).
  destruct (find_subscribed sub w3) as [c|]; [|by intros [= <- <-]].
  set (w4 := w3 <| key_routing_debug ::= _ |>).
  assert (ws_ok w4) as Hw4 by (eapply frame_ok; [|exact Hw3]; frame). clearbody w4.
  destruct (component_input _ _ _ _ w4) as [w5| |] eqn:E5; cbn [mbind outcome_bind]; try done.
  intros [= <- <-]. by eapply component_input_ok.
Qed.

Lemma frame_apply_all keys w : frame w (foldl (λ w k, apply_setting (SettingKey.as_str k) w) w keys).
Proof.
  revert w. induction keys as [|k keys IH]; intros w; [done|]. simpl. etrans; [apply frame_apply_setting|apply IH].
Qed.
Lemma frame_adopt_settings bytes w : frame w (adopt_settings bytes w).
Proof.
  unfold adopt_settings. cbv zeta. set (w1 := w <| settings_registry ::= _ |>).
  assert (frame w w1) as F1 by frame. clearbody w1. etrans; [exact F1|].
  etrans; [|case_match; apply frame_last_action]. apply frame_apply_all.
Qed.
Lemma frame_load_settings w : frame w (load_settings uuids w).2.
Proof.
  unfold load_settings. destruct (editor_io_context w) as [context|]; [|apply frame_last_action].
  destruct (resolve_settings_object_for_read context) as [[o|]|]; [|apply frame_last_action|done].
  destruct (draw uuids w) as [u w1] eqn:E1. apply frame_draw in E1 as (F1 & _). cbv zeta.
  assert (∀ s, frame w (w1 <| editor_io_context := Some (context <| EditorIoContext.storage := s |>) |>)) as F2.
  { intros s. etrans; [exact F1|]. frame. }
  destruct (JournaledStorage.begin_transaction _ _) as [[tx|e] s]; [|apply F2].
  destruct (JournaledStorage.read_data _ _ _) as [bytes|[]]; cbn [snd]; try apply F2;
    (etrans; [apply F2|]); [apply frame_adopt_settings|apply frame_last_action].
Qed.
Lemma frame_load_boot_profile w : frame w (load_boot_profile uuids w).2.
Proof. unfold load_boot_profile, draw. destruct (BootProfileManager.load _ _ _) as [r [m s]]. frame. Qed.
Lemma frame_set_context context w : frame w (set_editor_io_context uuids context w).
Proof. unfold set_editor_io_context, draw. destruct (BootProfileManager.load _ _ _) as [r [m s]]. frame. Qed.

(** ** Histories *)

(** The calls that change a workspace, but for restoring a session. *)
Inductive op :=
| SetContext (context : EditorIoContext.t) | SetPolicy (p : PolicyEngine.t)
| Launch (config : LaunchConfig.t) | LaunchPackage (describe : PackageError.t → Str.t) (m : PackageManifest.t)
| Terminate (id : ComponentId.t) (reason : ExitReason.t) | ExhaustBudget (id : ComponentId.t)
| Focus (id : ComponentId.t) | NextFocus | PreviousFocus | NextTile | PreviousTile | NextTab | PreviousTab
| Split (axis : SplitAxis.t)
| Set_ (key : Str.t) (v : SettingValue.t) | Reset_ (key : Str.t) | SaveSettings | LoadSettings
| SetProfile (p : BootProfile.t) | SaveProfile | LoadProfile
| Status | Execute (c : WorkspaceCommand.t) | Route (e : InputEvent.t).

Definition exec (o : op) (w : t) : outcome t :=
  let drop {A} (m : outcome (A * t)) := '(_, w) ← m; Return w in
  match o with
  | SetContext context => Return (set_editor_io_context uuids context w)
  | SetPolicy p => Return (with_policy p w)
  | Launch config => drop (launch_component uuids config w)
  | LaunchPackage describe m => drop (launch_package uuids describe m w)
  | Terminate id reason => drop (terminate_component id reason w)
  | ExhaustBudget id => drop (handle_budget_exhaustion id w)
  | Focus id => drop (focus_component id w)
  | NextFocus => drop (focus_next w)
  | PreviousFocus => drop (focus_previous w)
  | NextTile => drop (focus_next_tile w)
  | PreviousTile => drop (focus_previous_tile w)
  | NextTab => drop (focus_next_tab w)
  | PreviousTab => drop (focus_previous_tab w)
  | Split axis => drop (split_focused_tile axis w)
  | Set_ key v => Return (set_setting key v w)
  | Reset_ key => Return (reset_setting key w).2
  | SaveSettings => Return (save_settings uuids w).2
  | LoadSettings => Return (load_settings uuids w).2
  | SetProfile p => Return (set_boot_profile p w)
  | SaveProfile => Return (save_boot_profile uuids w).2
  | LoadProfile => Return (load_boot_profile uuids w).2
  | Status => Return (update_workspace_status w)
  | Execute c => drop (execute_command uuids c w)
  | Route e => drop (route_input uuids reply_ids e w)
  end.
Definition history (l : list op) (w : t) : outcome t := fold_outcome (λ w o, exec o w) l w.

Lemma drop_ok {A} (m : outcome (A * t)) w' :
  (∀ a w', m = Return (a, w') → ws_ok w') → ('(_, w) ← m; Return w) = Return w' → ws_ok w'.
Proof. destruct m as [[a w1]| |]; simpl; try done. intros Hm [= <-]. by eapply Hm. Qed.

Lemma exec_ok o w w' : ws_ok w → exec o w = Return w' → ws_ok w'.
Proof.
  intros Hw. destruct o; cbn [exec]; try apply drop_ok; try (intros [= <-]; eapply frame_ok; [|exact Hw]).
  - apply frame_set_context.
  - frame.
  - intros r w1. by apply launch_ok.
  - intros r w1. by apply package_ok.
  - intros r w1. by apply terminate_ok.
  - intros r w1. by apply terminate_ok.
  - intros r w1. by apply focus_ok.
  - intros r w1. by apply cycle_ok.
  - intros r w1. by apply cycle_ok.
  - intros r w1. by apply cycle_ok.
  - intros r w1. by apply cycle_ok.
  - intros r w1. apply (focus_tab_ok LayoutSpec.NextTab); try done. intros. by eapply cycle_ok.
  - intros r w1. apply (focus_tab_ok LayoutSpec.PreviousTab); try done. intros. by eapply cycle_ok.
  - intros r w1. by apply split_ok.
  - apply frame_set_setting.
  - apply frame_reset_setting.
  - apply frame_save_settings.
  - apply frame_load_settings.
  - frame.
  - apply frame_save_boot_profile.
  - apply frame_load_boot_profile.
  - apply frame_status.
  - intros r w1. by apply ws_command_ok.
  - intros r w1. by apply route_ok.
Qed.

(** The component that has the focus is found. *)
Lemma focused_is_known w sub :
  ws_ok w → FocusManager.current_focus (focus_manager w) = Some sub →
  ∃ id c, get_focused_component w = Some id ∧ components w !! id = Some c ∧ ComponentInfo.subscription c = Some sub.
Proof.
  intros Hw E. unfold get_focused_component, find_subscribed. rewrite E.
  assert (∃ id c, components w !! id = Some c ∧ ComponentInfo.subscription c = Some sub) as (id & c & Ec & Es).
  { pose proof (ok_stack _ Hw) as Hs. unfold FocusManager.current_focus in E.
    destruct (FocusManager.focus_stack (focus_manager w)) as [|x st]; [done|]. injection E as ->.
    by apply Forall_cons in Hs as [? _]. }
  exists id, c. split; [|done]. cbn [mbind option_bind].
  destruct (list_find _ (hm_values (components w))) as [[i c']|] eqn:F; simpl.
  - apply list_find_Some in F as (Hi & Hsub & _). apply list_elem_of_lookup_2 in Hi.
    unfold hm_values in Hi. apply list_elem_of_fmap in Hi as ([id' c1] & -> & Hi). apply elem_of_hm_iter in Hi.
    simpl in Hsub. unfold ComponentInfo.subscribed in Hsub.
    destruct (ComponentInfo.subscription c1) as [s'|] eqn:Es'; [|done]. apply N.eqb_eq in Hsub.
    assert (id = id') as -> by by eapply (ok_sub_inj _ Hw). simpl. f_equal. by apply (ok_id _ Hw id' c1).
  - apply list_find_None in F. rewrite Forall_forall in F. exfalso. apply (F c).
    + unfold hm_values. apply list_elem_of_fmap. exists (id, c). split; [done|]. by apply elem_of_hm_iter.
    + unfold ComponentInfo.subscribed. rewrite Es. by apply N.eqb_eq.
Qed.

(** What a user relies on. *)
Record consistent (w : t) : Prop := {
  co_shown id : id ∈ LayoutSpec.components (window_layout w) ↔ running w id;
  co_once : NoDup (LayoutSpec.components (window_layout w));
  co_instance id : id ∈ dom (component_instances w) ↔ running w id;
  co_views v d : owners w !! v = Some d ↔
    ∃ id c h, components w !! id = Some c ∧ ComponentInfo.is_running c = true ∧ h ∈ handles c
      ∧ v = ViewHandleCap.view_id h ∧ d = handle_of h;
  co_private id c h id' c' h' : components w !! id = Some c → components w !! id' = Some c' →
    h ∈ handles c → h' ∈ handles c' → ViewHandleCap.view_id h = ViewHandleCap.view_id h' → id = id';
  co_two id : running w id → ∃ c m s, components w !! id = Some c ∧ handles c = [m; s]
    ∧ ViewHandleCap.view_id m ≠ ViewHandleCap.view_id s;
  co_focus sub : FocusManager.current_focus (focus_manager w) = Some sub →
    ∃ id c, get_focused_component w = Some id ∧ components w !! id = Some c ∧ ComponentInfo.subscription c = Some sub
}.

(** C12: After any history of launches, packages, terminations, focus and layout changes, commands, key
    presses, settings and profiles, the layout shows exactly the running components, each once; exactly
    they have an instance; the view host holds exactly their views, two for each and none shared, under
    the handle that the component has; and the focus is on a component that the manager knows. *)
Theorem workspace_stays_consistent identity l w : history l (new identity) = Return w → consistent w.
Proof.
  intros E. assert (ws_ok w) as Hw.
  { eapply fold_outcome_ind; [apply (ws_new_ok identity)| |exact E]. intros s a s' _ Hs. by apply exec_ok. }
  split.
  - apply (ok_tabs _ Hw).
  - apply LayoutSpec.lo_nodup, (ok_layout _ Hw).
  - apply (ok_instance _ Hw).
  - apply (ok_views _ Hw).
  - apply (ok_disjoint _ Hw).
  - intros id (c & Hc & _). destruct (ok_handles _ Hw id c Hc) as (m & s & Em & Es & Hne).
    exists c, m, s. split; [done|]. split; [by apply handles_spec|done].
  - intros sub. by apply focused_is_known.
Qed.
(** ** What the code does not do *)

(** A key for an editor changes neither the storage nor the files of the workspace: what the editor
    saves, it saves in its own copy.  Nor does it end the editor, also when the editor asks to quit. *)
Lemma editor_saves_stay_private id e event w w' :
  component_instances w !! id = Some (ComponentInstance.Editor e) →
  component_input uuids reply_ids id event w = Return w' →
  editor_io_context w' = editor_io_context w ∧ components w' = components w.
Proof.
  intros Ei. unfold component_input, take_timestamp, add_u64, checked_add. destruct (_ <=? _); simpl; [|done].
  rewrite Ei. destruct (ViEditor.process_input _ _ _) as [[[a|err] e1]| |]; simpl; try done.
  - destruct (ViEditor.publish_views _ _ _) as [[r1 [e2 host]]| |]; simpl; try done. by intros [= <-].
  - by intros [= <-].
Qed.
(** The picker publishes with revision 0, which a view that was created with a title has already: its
    frames are refused. *)
Lemma picker_frames_are_refused h f v r latest :
  ViewHost.views v !! ViewHandleCap.view_id h = Some r → ViewRecord.latest_frame r = Some latest →
  ViewFrame.revision latest < u64_max → ViewFrame.revision f = 0 →
  ∃ e, ViewHost.publish_frame h f v = Return (Err e, v).
Proof.
  intros Er El Hl Hf. unfold ViewHost.publish_frame. rewrite Er.
  destruct (ViewRecord.verify_handle h r); [|by eexists].
  destruct (negb _); [by eexists|]. unfold ViewRecord.verify_revision, add_u64, checked_add. rewrite El, Hf.
  rewrite (proj2 (N.leb_le 0 _)), (proj2 (N.leb_le _ u64_max)) by lia. by eexists.
Qed.
(** Terminating a component again replaces its state and its exit reason. *)
Lemma second_termination_overwrites id reason w w' c r :
  components w !! id = Some c → ComponentInfo.is_running c = false →
  terminate_component id reason w = Return (r, w') →
  r = Ok tt ∧ ∃ c', components w' !! id = Some c' ∧ ComponentInfo.exit_reason c' = Some reason
  ∧ ComponentInfo.state c' = (exit_state reason).1.
Proof.
  intros Ec _ E. apply terminate_spec in E. rewrite Ec in E. destruct E as [-> E]. split; [done|].
  rewrite (te_components _ _ _ _ _ E). eexists. split; [apply lookup_insert_eq|done].
Qed.
End props.
End WorkspaceSpec.

(** ** Examples *)

Module WorkspaceExample.
Import WorkspaceManager WorkspaceSpec.
#[local] Existing Instances canonical_order CommandExample.format CommandExample.text ascii_lowercase sample_hasher
  SettingsExample.json.
(** Payloads and results as they are: only successes are sent. *)
#[local] Instance stage_codec : StageCodec := {|
  encode_request p := Ok (MessagePayload.mk (TypedPayload.data p));
  decode_response p := Ok (StageResult.Success (TypedPayload.new PipelineHarnessKernel.OUTPUT_SCHEMA
                             (PayloadSchemaVersion.new 1 0) (MessagePayload.data p)) [])
|}.
#[local] Instance handler_codec : HandlerCodec := {|
  decode_request p := Ok (TypedPayload.new PipelineRuntime.INPUT_SCHEMA (PayloadSchemaVersion.new 1 0)
                            (MessagePayload.data p));
  encode_response r := match r with
                       | StageResult.Success p _ => Ok (MessagePayload.mk (TypedPayload.data p))
                       | _ => Err "not a success"
                       end
|}.
#[local] Instance boot_json : BootJson := {| boot_to_json _ := Err []; boot_from_json _ := Err [] |}.
#[local] Instance std_format : StdFormat := {|
  f64_display _ := []; f64_parse _ := None; key_event_debug _ := []
|}.
Definition ids (n : nat) : Uuid := N.of_nat n.
Lemma ids_distinct : Inj (=) (=) ids.
Proof. intros a b. unfold ids. lia. Qed.
Definition me : IdentityMetadata.t := IdentityMetadata.new (ExecutionId.mk 900) IdentityKind.Service TrustDomain.core "workspace" 0.
Definition start (ty : ComponentType.t) : op :=
  Launch (LaunchConfig.new ty (str "one") IdentityKind.Component TrustDomain.user).
Definition press (k : KeyCode.t) : op := Route (InputEvent.Key (KeyEvent.new k Modifiers.NONE KeyState.Pressed)).
Definition calls : list op :=
  [start ComponentType.Cli; start ComponentType.Editor; press KeyCode.I; press KeyCode.A; Split SplitAxis.Vertical;
   start ComponentType.PipelineExecutor; Terminate (ComponentId.mk 1) ExitReason.Normal].
Lemma workspace_stays_consistent_witness : ∃ w, history ids ids calls (new me) = Return w ∧ consistent w.
Proof.
  assert (match history ids ids calls (new me) with Return _ => true | _ => false end = true) as Hr
    by (vm_compute; reflexivity).
  destruct (history ids ids calls (new me)) as [w| |] eqn:E; [|discriminate Hr..].
  exists w. split; [reflexivity|]. exact (workspace_stays_consistent ids ids ids_distinct me calls w E).
Defined.

(** A component that had the focus twice keeps its older entry when it is closed: once the other
    component is closed too, the keys go to the closed one. *)
Definition focus_calls : list op :=
  [start ComponentType.Cli; start ComponentType.Custom; Focus (ComponentId.mk 1);
   Terminate (ComponentId.mk 1) ExitReason.Normal; Terminate (ComponentId.mk 13) ExitReason.Normal].
Lemma closed_component_regains_focus :
  ∃ w c, history ids ids focus_calls (new me) = Return w ∧ get_focused_component w = Some (ComponentId.mk 1)
    ∧ components w !! ComponentId.mk 1 = Some c ∧ ComponentInfo.is_running c = false.
Proof.
  assert (match history ids ids focus_calls (new me) with
          | Return w => get_focused_component w = Some (ComponentId.mk 1) ∧
              (ComponentInfo.is_running <$> components w !! ComponentId.mk 1) = Some false
          | _ => False end) as Hr by (vm_compute; done).
  destruct (history ids ids focus_calls (new me)) as [w| |]; [|done..]. destruct Hr as [Hf Hc].
  destruct (components w !! ComponentId.mk 1) as [c|] eqn:E; [|done]. injection Hc as Hc. by exists w, c.
Qed.

(** A closed component is a tab again after its session is saved and restored, and no component of
    the session has an instance. *)
Lemma restored_session_shows_closed :
  match history ids ids [start ComponentType.Cli; start ComponentType.Custom;
                         Terminate (ComponentId.mk 1) ExitReason.Normal] (new me) with
  | Return w =>
      match restore_session ids (save_session w) (new me) with
      | Return (Ok _, w') => LayoutSpec.components (window_layout w') = [ComponentId.mk 1; ComponentId.mk 13]
          ∧ dom (component_instances w') = ∅
      | _ => False
      end
  | _ => False
  end.
Proof. vm_compute. done. Qed.
End WorkspaceExample.

(** * The search for the path of a picked file

    The file picker answers with an object; the manager looks for a path of that object and opens an
    editor with it.  The search returns for every file system, with a path that names the object when
    there is one. *)

Open Scope string_scope.
Open Scope list_scope.

Module SearchSpec.
Import FileSystemViewService FsSpec WorkspaceManager.

Section search.
Context `{HashOrder}.
Context (rs : fs) (wf : fs_wf rs).

(** The directories that paths lead to. *)
Definition member (d : DirectoryView.t) : Prop :=
  d = rs.1 ∨ directories rs.2 !! DirectoryView.id d = Some d ∧ DirectoryView.id d ≠ DirectoryView.id rs.1.
(** Entries are filed under their names, and the names can stand in a path. *)
Definition names_ok : Prop :=
  ∀ d n e, member d → DirectoryView.entries d !! n = Some e → DirectoryEntry.name e = n ∧ PathResolver.component n.
Context (names : names_ok).

Lemma member_sub d n e y :
  member d → DirectoryView.entries d !! n = Some e → directories rs.2 !! DirectoryEntry.object_id e = Some y →
  member y ∧ DirectoryView.id y = DirectoryEntry.object_id e.
Proof.
  intros Hd He Hy. pose proof (wf_keyed _ wf _ _ Hy) as Hid. split; [|done]. right. rewrite Hid. split; [done|].
  apply (wf_root _ wf d n e); [|done]. destruct Hd as [->|[Hd _]]; eauto.
Qed.
Lemma member_unique d d' : member d → member d' → DirectoryView.id d = DirectoryView.id d' → d = d'.
Proof. intros [->|[Hd ?]] [->|[Hd' ?]] E; congruence. Qed.

(** Nothing is left to do for an entry: it is not the target, and its directory has been visited. *)
Definition done_entry (target : ObjectId.t) (V : gset ObjectId.t) (e : DirectoryEntry.t) : Prop :=
  DirectoryEntry.object_id e ≠ target ∧
  (DirectoryEntry.kind e = ObjectKind.Map → is_Some (directories rs.2 !! DirectoryEntry.object_id e) →
   DirectoryEntry.object_id e ∈ V).
Definition done_dir (target : ObjectId.t) (V : gset ObjectId.t) (i : ObjectId.t) : Prop :=
  ∀ d n e, member d → DirectoryView.id d = i → DirectoryView.entries d !! n = Some e → done_entry target V e.
Lemma done_entry_mono target V V' e : V ⊆ V' → done_entry target V e → done_entry target V' e.
Proof. intros HV [H1 H2]. split; [done|]. intros Hk Hs. by apply HV, H2. Qed.
Lemma done_dir_mono target V V' i : V ⊆ V' → done_dir target V i → done_dir target V' i.
Proof. intros HV H1 d n e Hd Hi He. eapply done_entry_mono; [done|]. by eapply H1. Qed.

(** What a search from [d], which [pre] leads to, does. *)
Definition finds (target : ObjectId.t) (d : DirectoryView.t) (pre : list Str.t) (path : Str.t) : Prop :=
  ∃ p e, path = join_with [PathResolver.slash] (pre ++ p) ∧ p ≠ [] ∧ Forall PathResolver.component p
    ∧ named rs.2 d p = Some e ∧ DirectoryEntry.object_id e = target.
Definition searched (target : ObjectId.t) (d : DirectoryView.t) (pre : list Str.t) (V : gset ObjectId.t)
    (r : option Str.t * gset ObjectId.t) : Prop :=
  V ⊆ r.2 ∧
  match r.1 with
  | Some path => finds target d pre path
  | None => DirectoryView.id d ∈ r.2 ∧ ∀ i, i ∈ r.2 → i ∉ V → done_dir target r.2 i
  end.

Lemma join_snoc pre n :
  Forall PathResolver.component pre → 
  join_with [PathResolver.slash] (pre ++ [n]) =
  match join_with [PathResolver.slash] pre with [] => n | _ => join_with [PathResolver.slash] pre ++ Str.of_string "/" ++ n end.
Proof.
  intros Hpre. destruct pre as [|c pre]; [done|].
  destruct (PathResolver.join_ends (c :: pre)) as (Hne & _); [done|done|].
  assert (∀ l : list Str.t, l ≠ [] → join_with [PathResolver.slash] (l ++ [n])
                            = join_with [PathResolver.slash] l ++ [PathResolver.slash] ++ n) as Hj.
  { clear. intros l. induction l as [|x [|y l] IH]; intros Hl; [done|done|].
    change (join_with [PathResolver.slash] ((x :: y :: l) ++ [n]))
      with (x ++ [PathResolver.slash] ++ join_with [PathResolver.slash] ((y :: l) ++ [n])).
    rewrite IH by done. simpl. by rewrite <-!app_assoc. }
  rewrite Hj by done. by destruct (join_with [PathResolver.slash] (c :: pre)).
Qed.

Lemma finds_here target d pre n e :
  Forall PathResolver.component pre → member d → DirectoryView.entries d !! n = Some e →
  DirectoryEntry.object_id e = target →
  finds target d pre (match join_with [PathResolver.slash] pre with
                      | [] => DirectoryEntry.name e
                      | _ => join_with [PathResolver.slash] pre ++ Str.of_string "/" ++ DirectoryEntry.name e end).
Proof.
  intros Hp Hd He Ht. destruct (names d n e Hd He) as [-> Hn]. exists [n], e.
  split; [by rewrite join_snoc|]. split; [done|]. split; [by apply Forall_singleton|]. done.
Qed.
Lemma finds_below target d pre n e y path :
  member d → DirectoryView.entries d !! n = Some e → DirectoryEntry.kind e = ObjectKind.Map →
  directories rs.2 !! DirectoryEntry.object_id e = Some y → finds target y (pre ++ [n]) path → finds target d pre path.
Proof.
  intros Hd He Hk Hy (p & e' & -> & Hne & Hp & Hn & Ht). destruct (names d n e Hd He) as [_ Hc].
  exists (n :: p), e'. split; [by rewrite <-app_assoc|]. split; [done|]. split; [by constructor|]. split; [|done].
  destruct p as [|c p]; [done|]. cbn [named]. rewrite He. simpl. by rewrite bool_decide_true, Hy by done.
Qed.

(** One pass over entries of [d], given that the descents search their directories. *)
Definition loop_post (target : ObjectId.t) (d : DirectoryView.t) (pre : list Str.t) (V0 V : gset ObjectId.t)
    (es : list DirectoryEntry.t) (r : option Str.t * gset ObjectId.t) : Prop :=
  V ⊆ r.2 ∧
  match r.1 with
  | Some path => finds target d pre path
  | None => Forall (done_entry target r.2) es ∧
            ((∀ i, i ∈ V → i ∉ V0 → done_dir target V i) → ∀ i, i ∈ r.2 → i ∉ V0 → done_dir target r.2 i)
  end.
Lemma search_entries_spec descend target d pre V0 es V :
  member d → Forall PathResolver.component pre → V0 ⊆ V →
  (∀ e, e ∈ es → ∃ n, DirectoryView.entries d !! n = Some e) →
  (∀ n e y V', DirectoryView.entries d !! n = Some e → DirectoryEntry.kind e = ObjectKind.Map →
    directories rs.2 !! DirectoryEntry.object_id e = Some y → V ⊆ V' →
    ∃ r, descend y (join_with [PathResolver.slash] (pre ++ [n])) V' = Return r ∧ searched target y (pre ++ [n]) V' r) →
  ∃ r, search_entries descend rs.2 target (join_with [PathResolver.slash] pre) es V = Return r
    ∧ loop_post target d pre V0 V es r.
Proof.
  intros Hd Hpre. revert V. induction es as [|e es IH]; intros V HV Hes Hdesc; cbn [search_entries].
  { eexists. split; [done|]. split; [done|]. split; [constructor|done]. }
  destruct (Hes e) as [n He]; [constructor|]. destruct (names d n e Hd He) as [Hname Hn].
  case_bool_decide as Ht.
  { eexists. split; [done|]. split; [done|]. cbn [fst snd]. by apply (finds_here target d pre n e). }
  assert (∀ V', V ⊆ V' → done_entry target V' e → (∀ i, i ∈ V' → i ∉ V → done_dir target V' i) →
    ∃ r, search_entries descend rs.2 target (join_with [PathResolver.slash] pre) es V' = Return r
      ∧ loop_post target d pre V0 V (e :: es) r) as Hrest.
  { intros V' HV' Hdone Hnew. destruct (IH V') as ([[path|] V''] & -> & Hsub & Hr).
    - by etrans.
    - intros e' He'. apply Hes. by constructor.
    - intros n' e' y W He' Hk Hy HW. apply (Hdesc n' e' y W); [done..|]. by etrans.
    - eexists. split; [done|]. split; [by etrans|done].
    - eexists. split; [done|]. split; [by etrans|]. destruct Hr as [Hall Hr]. split.
      + constructor; [|done]. by eapply done_entry_mono.
      + intros Hold. apply Hr. intros i Hi Hi0. destruct (decide (i ∈ V)) as [HiV|HiV]; [|by apply Hnew].
        eapply done_dir_mono; [exact HV'|]. by apply Hold. }
  destruct (if bool_decide _ then _ else None) as [y|] eqn:Ey.
  - case_bool_decide as Hk; [|done]. unfold get_directory in Ey.
    rewrite Hname, <-(join_snoc pre n) by done.
    destruct (Hdesc n e y V He Hk Ey) as ([[path|] V'] & -> & Hsub & Hr); [done|..]; cbn [mbind outcome_bind].
    + eexists. split; [done|]. split; [done|]. simpl in Hr. by eapply finds_below.
    + destruct Hr as [Hin Hnew]. apply Hrest; [done| |done]. split; [done|]. intros _ _.
      by destruct (member_sub d n e y Hd He Ey) as [_ <-].
  - apply Hrest; [done| |by intros ? ? []]. split; [done|]. intros Hk [y Hy].
    rewrite bool_decide_true in Ey by done. unfold get_directory in Ey. congruence.
Qed.

(** Directories that may still be entered after [d]. *)
Definition open_dirs (d : DirectoryView.t) (V : gset ObjectId.t) : nat :=
  size (dom (directories rs.2) ∖ ({[DirectoryView.id d]} ∪ V)).
Lemma open_dirs_sub d y V V' :
  directories rs.2 !! DirectoryView.id y = Some y → {[DirectoryView.id d]} ∪ V ⊆ V' → DirectoryView.id y ∉ V' →
  (open_dirs y V' < open_dirs d V)%nat.
Proof.
  intros Hy HV Hn. unfold open_dirs. apply subset_size, strict_spec_alt. split; [set_solver|].
  intros E. assert (DirectoryView.id y ∈ dom (directories rs.2)) as Hin by by apply elem_of_dom_2 in Hy.
  set_solver.
Qed.

Lemma path_search_spec fuel target d pre V :
  member d → Forall PathResolver.component pre → (1 ≤ fuel)%nat →
  (DirectoryView.id d ∉ V → (open_dirs d V + 2 ≤ fuel)%nat) →
  ∃ r, resolve_relative_path_recursive fuel rs.2 d target (join_with [PathResolver.slash] pre) V = Return r
    ∧ searched target d pre V r.
Proof.
  revert d pre V. induction fuel as [|fuel IH]; intros d pre V Hd Hpre H1 Hf; [lia|].
  cbn [resolve_relative_path_recursive]. case_bool_decide as Hin.
  { eexists. split; [done|]. split; [done|]. by split. }
  specialize (Hf Hin). set (es := stable_sort _ _).
  assert (∀ e, e ∈ es ↔ ∃ n, DirectoryView.entries d !! n = Some e) as Hes.
  { intros e. unfold es, DirectoryView.list_entries, hm_values. rewrite stable_sort_Permutation, list_elem_of_fmap.
    split; [intros ([n e'] & -> & Hi); exists n; by apply elem_of_hm_iter|].
    intros [n He]. exists (n, e). split; [done|]. by apply elem_of_hm_iter. }
  destruct (search_entries_spec
    (λ subdir path visited, resolve_relative_path_recursive fuel rs.2 subdir target path visited)
    target d pre ({[DirectoryView.id d]} ∪ V) es ({[DirectoryView.id d]} ∪ V))
    as ([[path|] V'] & -> & Hsub & Hr); [done|done|done|by intros e ?%Hes|..].
  - intros n e y W He Hk Hy HW. destruct (member_sub d n e y Hd He Hy) as [Hmy Hidy].
    apply IH; [done| |lia|].
    + apply Forall_app. split; [done|]. apply Forall_singleton. by apply (names d n e).
    + intros Hny. rewrite <-Hidy in Hy. pose proof (open_dirs_sub d y V W Hy HW Hny). lia.
  - eexists. split; [done|]. split; [simpl in *; set_solver|done].
  - eexists. split; [done|]. destruct Hr as [Hall Hr]. split; [simpl in *; set_solver|]. split; [simpl in *; set_solver|].
    intros i Hi HiV. destruct (decide (i = DirectoryView.id d)) as [->|Hne].
    + intros d' n e Hd' Hid He. assert (d' = d) as -> by by apply member_unique. rewrite Forall_forall in Hall.
      apply Hall, Hes. by exists n.
    + apply Hr; [by intros ? ? []|done|]. set_solver.
Qed.

(** When everything that was visited is done, no path below names the target. *)
Lemma nothing_named target V p d e :
  (∀ i, i ∈ V → done_dir target V i) → member d → DirectoryView.id d ∈ V → named rs.2 d p = Some e →
  DirectoryEntry.object_id e ≠ target.
Proof.
  intros HV. revert d. induction p as [|n p IH]; intros d Hd Hin; [done|].
  destruct p as [|c p]; cbn [named].
  { intros He. by apply (HV _ Hin d n e Hd eq_refl He). }
  destruct (DirectoryView.entries d !! n) as [e'|] eqn:He; simpl; [|done]. case_bool_decide as Hk; [|done].
  destruct (directories rs.2 !! _) as [y|] eqn:Hy; simpl; [|done].
  destruct (member_sub d n e' y Hd He Hy) as [Hmy Hidy]. apply IH; [done|].
  rewrite Hidy. by apply (HV _ Hin d n e' Hd eq_refl He).
Qed.

(** C24: For every well-formed file system the search returns, whatever cycles the directories form; a
    path that it finds opens the object that was searched for, and when it finds none, no path
    opens it. *)
Theorem search_finds_a_path_iff_one_exists target :
  ∃ r, resolve_relative_path_from_context (Some (rs.2, rs.1)) target = Return r ∧
    match r with
    | Some path => open rs.1 path rs.2 = Ok target
    | None => ∀ path, open rs.1 path rs.2 ≠ Ok target
    end.
Proof.
  unfold resolve_relative_path_from_context. case_bool_decide as Ht.
  { eexists. split; [done|]. unfold open, is_root. by rewrite Ht. }
  destruct (path_search_spec (path_fuel rs.2) target rs.1 [] ∅) as ([[path|] V] & E & _ & Hr);
    [by left|constructor|unfold path_fuel; lia| |..].
  { intros _. unfold open_dirs, path_fuel. rewrite <-size_dom. 
    assert (size (dom (directories rs.2) ∖ ({[DirectoryView.id rs.1]} ∪ ∅)) ≤ size (dom (directories rs.2)))%nat
      by (apply subseteq_size; set_solver). lia. }
  all: cbn [join_with] in E; rewrite E; cbn [mbind outcome_bind]; eexists; (split; [done|]).
  - destruct Hr as (p & e & -> & Hne & Hp & Hn & He). cbn [app].
    destruct (PathResolver.join_ends p Hne Hp) as (H1 & H2 & H3). unfold open, is_root.
    rewrite Slash.trim_id, bool_decide_false by done.
    assert (resolve_path rs.1 (join_with [PathResolver.slash] p) rs.2 = Ok e) as ->; [|simpl; by rewrite He].
    apply resolve_path_named. exists p. split; [by apply PathResolver.split_path_join|done].
  - destruct Hr as [Hin Hall]. intros path. unfold open. destruct (is_root path); [congruence|].
    destruct (resolve_path rs.1 path rs.2) as [e|] eqn:Er; simpl; [|done]. intros [= He].
    apply resolve_path_named in Er as (p & _ & Hn).
    by apply (nothing_named target V p rs.1 e) in Hn; [|intros i Hi; apply Hall; [done|set_solver]|left|].
Qed.
End search.
End SearchSpec.

Module SearchExample.
Import FileSystemViewService FsSpec FsProps SearchSpec WorkspaceManager.
#[local] Existing Instance canonical_order.
(** A directory that holds itself and a note. *)
Definition docs : DirectoryView.t :=
  DirectoryView.mk (oid 2) {[ Str.of_string "again" := DirectoryEntry.new (Str.of_string "again") (oid 2) ObjectKind.Map;
                              Str.of_string "note" := DirectoryEntry.new (Str.of_string "note") (oid 9) ObjectKind.Blob ]}.
Definition cyclic : fs := (sample_root, FileSystemViewService.mk {[ oid 2 := docs ]}).
Lemma cyclic_entries d n e :
  d = cyclic.1 ∨ (∃ id, directories cyclic.2 !! id = Some d) → DirectoryView.entries d !! n = Some e →
  DirectoryEntry.name e = n ∧ DirectoryEntry.object_id e ≠ DirectoryView.id cyclic.1 ∧ PathResolver.component n.
Proof.
  simpl. intros [->|[i [<- <-]%lookup_singleton_Some]]; simpl.
  - intros [<- <-]%lookup_singleton_Some. split_and!; [done|done|]. apply (bool_decide_unpack _). by vm_compute.
  - intros [[<- <-]|[_ [<- <-]%lookup_singleton_Some]]%lookup_insert_Some; (split_and!; [done|done|]);
      apply (bool_decide_unpack _); by vm_compute.
Qed.
Lemma cyclic_wf : fs_wf cyclic.
Proof.
  split.
  - simpl. by intros i d [<- <-]%lookup_singleton_Some.
  - intros d n e Hd He. by destruct (cyclic_entries d n e Hd He) as (_ & ? & _).
Qed.
Lemma cyclic_names : names_ok cyclic.
Proof.
  intros d n e Hd He. destruct (cyclic_entries d n e) as (? & _ & ?); [|done|done].
  destruct Hd as [->|[Hd _]]; [by left|]. right. by eexists.
Qed.
Lemma search_finds_a_path_iff_one_exists_witness :
  ∃ r, resolve_relative_path_from_context (Some (cyclic.2, cyclic.1)) (oid 9) = Return r
    ∧ r = Some (Str.of_string "docs/note")
    ∧ match r with
      | Some path => open cyclic.1 path cyclic.2 = Ok (oid 9)
      | None => ∀ path, open cyclic.1 path cyclic.2 ≠ Ok (oid 9)
      end.
Proof.
  destruct (search_finds_a_path_iff_one_exists cyclic cyclic_wf cyclic_names (oid 9)) as (r & E & Hr).
  exists r. split; [exact E|]. split; [|exact Hr].
  assert (resolve_relative_path_from_context (Some (cyclic.2, cyclic.1)) (oid 9)
          = Return (Some (Str.of_string "docs/note"))) as E' by (vm_compute; reflexivity).
  rewrite E' in E. by injection E.
Defined.
End SearchExample.
