(* ===== verification/CliConsole.v ===== *)
(** * The command-line console

    [cli_console/src/interactive.rs]: the line editor of the console, with history and the control
    keys of a shell; [cli_console/src/commands.rs]: the file commands, over the file-system view
    with a store in memory and over the persistent file system on a block device.

    The line is indexed by bytes as in Rust; the theorem says that the editor is the usual one:
    a text before and a text after the cursor. *)

From S2P Require Import Prelude CoreTypes Debug Ipc Identity Storage BlockStore Editor EditorProps Text Input FsView PipelineHost.
Open Scope string_scope.
Open Scope list_scope.
Open Scope nat_scope.
#[local] Notation str := Str.of_string.

(** ** The console ([interactive.rs]) *)

Module InteractiveConsole.
(* cli_console/src/interactive.rs:21-36 InteractiveConsole *)
Record t := mk {
  task_id : TaskId.t;
  subscription : option InputSubscriptionCap.t;
  event_buffer : list InputEvent.t;
  text_buffer : Str.t;
  cursor_pos : nat;
  history : list Str.t;
  history_pos : option nat
}.
#[global] Instance rebuild_t : Rebuild t := λ c,
  mk (task_id c) (subscription c) (event_buffer c) (text_buffer c) (cursor_pos c) (history c) (history_pos c).
(* cli_console/src/interactive.rs:40-50 InteractiveConsole::new *)
Definition new (task_id : TaskId.t) : t := mk task_id None [] [] 0 [] None.
(** The derived [Debug] of the only error of a subscription. *)
Definition input_service_error `{UuidFormat} (e : InputServiceError.t) : string :=
  match e with
  | InputServiceError.SubscriptionNotFound id => Debug.tuple1 "SubscriptionNotFound" (Debug.number id)
  | InputServiceError.SubscriptionAlreadyExists t => Debug.tuple1 "SubscriptionAlreadyExists" (Debug.task_id t)
  | InputServiceError.InvalidCapability => "InvalidCapability"
  | InputServiceError.DeliveryFailed reason => Debug.struct "DeliveryFailed" [("reason", Debug.str reason)]
  end.
Definition focus_error (e : FocusError.t) : string :=
  match e with
  | FocusError.FocusDenied reason => Debug.struct "FocusDenied" [("reason", Debug.str reason)]
  | FocusError.NoFocus => "NoFocus"
  | FocusError.SubscriptionNotFound => "SubscriptionNotFound"
  | FocusError.EmptyStack => "EmptyStack"
  end.
(* cli_console/src/interactive.rs:53-64 InteractiveConsole::subscribe *)
Definition subscribe `{UuidFormat} (service : InputService.t) (channel : ChannelId.t) (c : t)
    : outcome (result unit string * (t * InputService.t)) :=
  '(r, service) ← InputService.subscribe_keyboard (task_id c) channel service;
  Return match r with
         | Err e => (Err ("Failed to subscribe: " +:+ input_service_error e), (c, service))
         | Ok cap => (Ok tt, (c <| subscription := Some cap |>, service))
         end.
(* cli_console/src/interactive.rs:67-78 InteractiveConsole::request_focus *)
Definition request_focus (m : FocusManager.t) (c : t) : outcome (result unit string * FocusManager.t) :=
  match subscription c with
  | None => Return (Err "Not subscribed to input", m)
  | Some cap =>
      '(r, m) ← FocusManager.request_focus cap m;
      Return (map_err (λ e, "Failed to request focus: " +:+ focus_error e) r, m)
  end.
(* cli_console/src/interactive.rs:81-87 InteractiveConsole::has_focus *)
Definition has_focus (m : FocusManager.t) (c : t) : bool :=
  match subscription c with Some cap => FocusManager.has_focus cap m | None => false end.
(* cli_console/src/interactive.rs:302-334 InteractiveConsole::key_to_char *)
Definition key_to_char (event : KeyEvent.t) : option N :=
  match KeyEvent.code event with
  | KeyCode.A => Some 97 | KeyCode.B => Some 98 | KeyCode.C => Some 99 | KeyCode.D => Some 100
  | KeyCode.E => Some 101 | KeyCode.F => Some 102 | KeyCode.G => Some 103 | KeyCode.H => Some 104
  | KeyCode.I => Some 105 | KeyCode.J => Some 106 | KeyCode.K => Some 107 | KeyCode.L => Some 108
  | KeyCode.M => Some 109 | KeyCode.N => Some 110 | KeyCode.O => Some 111 | KeyCode.P => Some 112
  | KeyCode.Q => Some 113 | KeyCode.R => Some 114 | KeyCode.S => Some 115 | KeyCode.T => Some 116
  | KeyCode.U => Some 117 | KeyCode.V => Some 118 | KeyCode.W => Some 119 | KeyCode.X => Some 120
  | KeyCode.Y => Some 121 | KeyCode.Z => Some 122 | KeyCode.Space => Some 32
  | _ => None
  end%N.
(** The two loops: back while the character before [pos] is as wanted. *)
(* cli_console/src/interactive.rs:285-292 InteractiveConsole::delete_word_before_cursor *)
Fixpoint back_while (wanted : N → bool) (chars : list N) (pos : nat) : nat :=
  match pos with
  | O => O
  | S p => match chars !! p with
           | Some ch => if wanted ch then back_while wanted chars p else pos
           | None => pos
           end
  end.
(* cli_console/src/interactive.rs:275-299 InteractiveConsole::delete_word_before_cursor *)
Definition delete_word_before_cursor (c : t) : outcome t :=
  if cursor_pos c =? 0 then Return c
  else
    '(chars, after) ← expect (Str.split_at (cursor_pos c) (text_buffer c));
    let pos := back_while Str.is_whitespace chars (length chars) in
    let pos := back_while (λ ch, negb (Str.is_whitespace ch)) chars pos in
    let before := take pos chars in
    Return (c <| text_buffer := before ++ after |> <| cursor_pos := Str.len before |>).
(** The deletion of the character under the cursor. *)
Definition delete_under (c : t) : outcome t :=
  if cursor_pos c <? Str.len (text_buffer c)
  then b ← Str.remove (cursor_pos c) (text_buffer c); Return (c <| text_buffer := b |>)
  else Return c.
(** [String::drain(0..i)] and [String::truncate]; truncation beyond the end does nothing. *)
Definition drain_to (i : nat) (s : Str.t) : outcome Str.t :=
  '(_, rest) ← expect (Str.split_at i s); Return rest.
Definition truncate (i : nat) (s : Str.t) : outcome Str.t :=
  if i <=? Str.len s then '(kept, _) ← expect (Str.split_at i s); Return kept else Return s.
(* cli_console/src/interactive.rs:221-272 InteractiveConsole::handle_ctrl_key *)
Definition handle_ctrl_key (event : KeyEvent.t) (c : t) : outcome (option Str.t * t) :=
  match KeyEvent.code event with
  | KeyCode.A => Return (None, c <| cursor_pos := 0 |>)
  | KeyCode.E => Return (None, c <| cursor_pos := Str.len (text_buffer c) |>)
  | KeyCode.U =>
      b ← drain_to (cursor_pos c) (text_buffer c);
      Return (None, c <| text_buffer := b |> <| cursor_pos := 0 |>)
  | KeyCode.K => b ← truncate (cursor_pos c) (text_buffer c); Return (None, c <| text_buffer := b |>)
  | KeyCode.W => c ← delete_word_before_cursor c; Return (None, c)
  | KeyCode.L => Return (None, c <| text_buffer := [] |> <| cursor_pos := 0 |>)
  | KeyCode.C => Return (None, c <| text_buffer := [] |> <| cursor_pos := 0 |> <| history_pos := None |>)
  | KeyCode.D => c ← delete_under c; Return (None, c)
  | _ => Return (None, c)
  end.
(** A line of the history in place of the text. *)
Definition recall (pos : nat) (c : t) : outcome t :=
  line ← expect (history c !! pos);
  Return (c <| history_pos := Some pos |> <| text_buffer := line |> <| cursor_pos := Str.len line |>).
(* cli_console/src/interactive.rs:117-131 InteractiveConsole::handle_key_press *)
Definition enter (c : t) : option Str.t * t :=
  let command := text_buffer c in
  let c := if bool_decide (command = []) then c
           else
             let c := if 100 <=? length (history c) then c <| history ::= drop 1 |> else c in
             c <| history ::= λ l, l ++ [command] |> in
  (Some command, c <| text_buffer := [] |> <| cursor_pos := 0 |> <| history_pos := None |>).
(* cli_console/src/interactive.rs:109-218 InteractiveConsole::handle_key_press *)
Definition handle_key_press (event : KeyEvent.t) (c : t) : outcome (option Str.t * t) :=
  if Modifiers.is_ctrl (KeyEvent.modifiers event) then handle_ctrl_key event c
  else
    match KeyEvent.code event with
    | KeyCode.Enter => Return (enter c)
    | KeyCode.Backspace =>
        if 0 <? cursor_pos c
        then b ← Str.remove (cursor_pos c - 1) (text_buffer c);
             Return (None, c <| text_buffer := b |> <| cursor_pos ::= pred |>)
        else Return (None, c)
    | KeyCode.Delete => c ← delete_under c; Return (None, c)
    | KeyCode.Escape =>
        Return (None, c <| text_buffer := [] |> <| cursor_pos := 0 |> <| history_pos := None |>)
    | KeyCode.Left => Return (None, if 0 <? cursor_pos c then c <| cursor_pos ::= pred |> else c)
    | KeyCode.Right =>
        Return (None, if cursor_pos c <? Str.len (text_buffer c) then c <| cursor_pos ::= S |> else c)
    | KeyCode.Home => Return (None, c <| cursor_pos := 0 |>)
    | KeyCode.End => Return (None, c <| cursor_pos := Str.len (text_buffer c) |>)
    | KeyCode.Up =>
        if bool_decide (history c = []) then Return (None, c)
        else
          let pos := match history_pos c with
                     | None => length (history c) - 1
                     | Some p => if 0 <? p then p - 1 else p
                     end in
          c ← recall pos c; Return (None, c)
    | KeyCode.Down =>
        match history_pos c with
        | Some pos =>
            if pos + 1 <? length (history c) then c ← recall (pos + 1) c; Return (None, c)
            else Return (None, c <| history_pos := None |> <| text_buffer := [] |> <| cursor_pos := 0 |>)
        | None => Return (None, c)
        end
    | KeyCode.PageUp | KeyCode.PageDown => Return (None, c)
    | _ =>
        match key_to_char event with
        | Some ch =>
            b ← Str.insert (cursor_pos c) ch (text_buffer c);
            Return (None, c <| text_buffer := b |> <| cursor_pos ::= S |> <| history_pos := None |>)
        | None => Return (None, c)
        end
    end.
(* cli_console/src/interactive.rs:93-106 InteractiveConsole::process_event *)
Definition process_event (event : InputEvent.t) (c : t) : outcome (option Str.t * t) :=
  let c := c <| event_buffer ::= λ l, l ++ [event] |> in
  match InputEvent.as_key event with
  | Some key => if negb (KeyEvent.is_pressed key) then Return (None, c) else handle_key_press key c
  | None => Return (None, c)
  end.
End InteractiveConsole.

(** ** The line editor as a specification *)

Module LineSpec.
(** The text before the cursor, nearest character first, the text after it, the lines entered, and
    the one that is shown. *)
Record line := mk { left : list N; right : list N; past : list Str.t; shown : option nat }.
#[global] Instance rebuild_line : Rebuild line := λ l, mk (left l) (right l) (past l) (shown l).
Definition empty : line := mk [] [] [] None.
Definition text (l : line) : Str.t := reverse (left l) ++ right l.
Definition cleared (l : line) : line := mk [] [] (past l) None.
Fixpoint drop_while (P : N → bool) (l : list N) : list N :=
  match l with c :: l' => if P c then drop_while P l' else l | [] => [] end.
Definition last_100 (l : list Str.t) : list Str.t := drop (length l - 100) l.
Definition show (i : nat) (l : line) : line :=
  match past l !! i with Some t => mk (reverse t) [] (past l) (Some i) | None => l end.

(** What a key does: [None] for the text of a key that types none. *)
Definition ctrl (code : KeyCode.t) (l : line) : line :=
  match code with
  | KeyCode.A => mk [] (text l) (past l) (shown l)
  | KeyCode.E => mk (reverse (text l)) [] (past l) (shown l)
  | KeyCode.U => mk [] (right l) (past l) (shown l)
  | KeyCode.K => mk (left l) [] (past l) (shown l)
  | KeyCode.W => mk (drop_while (λ c, negb (Str.is_whitespace c)) (drop_while Str.is_whitespace (left l)))
                    (right l) (past l) (shown l)
  | KeyCode.L => mk [] [] (past l) (shown l)
  | KeyCode.C => cleared l
  | KeyCode.D => mk (left l) (tail (right l)) (past l) (shown l)
  | _ => l
  end.
Definition plain (key : KeyEvent.t) (l : line) : option Str.t * line :=
  match KeyEvent.code key with
  | KeyCode.Enter =>
      (Some (text l), mk [] [] (if bool_decide (text l = []) then past l else last_100 (past l ++ [text l])) None)
  | KeyCode.Backspace => (None, mk (tail (left l)) (right l) (past l) (shown l))
  | KeyCode.Delete => (None, mk (left l) (tail (right l)) (past l) (shown l))
  | KeyCode.Escape => (None, cleared l)
  | KeyCode.Left =>
      (None, match left l with c :: a => mk a (c :: right l) (past l) (shown l) | [] => l end)
  | KeyCode.Right =>
      (None, match right l with c :: b => mk (c :: left l) b (past l) (shown l) | [] => l end)
  | KeyCode.Home => (None, mk [] (text l) (past l) (shown l))
  | KeyCode.End => (None, mk (reverse (text l)) [] (past l) (shown l))
  | KeyCode.Up => (None, show match shown l with None => length (past l) - 1 | Some i => i - 1 end l)
  | KeyCode.Down =>
      (None, match shown l with
             | Some i => if S i <? length (past l) then show (S i) l else cleared l
             | None => l
             end)
  | _ => (None, match InteractiveConsole.key_to_char key with
                | Some c => mk (c :: left l) (right l) (past l) None
                | None => l
                end)
  end.
Definition press (event : InputEvent.t) (l : line) : option Str.t * line :=
  match InputEvent.as_key event with
  | Some key =>
      if negb (KeyEvent.is_pressed key) then (None, l)
      else if Modifiers.is_ctrl (KeyEvent.modifiers key) then (None, ctrl (KeyEvent.code key) l)
      else plain key l
  | None => (None, l)
  end.
Fixpoint typed (events : list InputEvent.t) (l : line) : list (option Str.t) * line :=
  match events with
  | [] => ([], l)
  | e :: events => let '(o, l) := press e l in let '(os, l) := typed events l in (o :: os, l)
  end.
End LineSpec.

#[local] Arguments Nat.ltb : simpl never.
#[local] Arguments Nat.leb : simpl never.

Module LineProps.
Import InteractiveConsole LineSpec StrSpec.
Fixpoint process_all (events : list InputEvent.t) (c : t) : outcome (list (option Str.t) * t) :=
  match events with
  | [] => Return ([], c)
  | e :: events =>
      '(o, c) ← process_event e c; '(os, c) ← process_all events c; Return (o :: os, c)
  end.

(** A console that shows a line. *)
Record shows (c : t) (l : line) : Prop := {
  sh_text : text_buffer c = text l;
  sh_cursor : cursor_pos c = length (left l);
  sh_history : history c = past l;
  sh_pos : history_pos c = shown l;
  sh_left : ascii (left l);
  sh_right : ascii (right l);
  sh_past : Forall ascii (past l);
  sh_bound : length (past l) ≤ 100;
  sh_shown i : shown l = Some i → i < length (past l)
}.

Lemma ascii_text l : ascii (left l) → ascii (right l) → ascii (text l).
Proof. intros. apply Forall_app. split; [by apply Forall_reverse|done]. Qed.
Lemma len_text c l : shows c l → Str.len (text_buffer c) = length (left l) + length (right l).
Proof.
  intros [-> _ _ _ Hl Hr _ _ _]. rewrite len_ascii by by apply ascii_text. unfold text.
  by rewrite length_app, length_reverse.
Qed.
Lemma split_shown c l : shows c l → Str.split_at (cursor_pos c) (text_buffer c) = Some (reverse (left l), right l).
Proof.
  intros [-> -> _ _ Hl Hr _ _ _]. unfold text. rewrite split_at_ascii.
  - rewrite <-(length_reverse (left l)), take_app_length, drop_app_length. done.
  - by apply ascii_text.
  - rewrite length_app, length_reverse. lia.
Qed.
(** Searching backwards in a text is dropping from its reverse. *)
Lemma back_while_spec P (s r : list N) : back_while P (s ++ r) (length s) = length (drop_while P (reverse s)).
Proof.
  revert r. induction s as [|c s IH] using rev_ind; intros r; [done|].
  rewrite length_app, Nat.add_1_r, reverse_snoc. cbn [back_while drop_while].
  rewrite <-app_assoc, lookup_app_r, Nat.sub_diag by done. simpl.
  destruct (P c); [apply IH|]. simpl. by rewrite length_reverse.
Qed.
Lemma drop_while_suffix P s : ∃ k, s = k ++ drop_while P s.
Proof.
  induction s as [|c s [k IH]]; simpl; [by exists []|]. destruct (P c); [|by exists []].
  exists (c :: k). by rewrite IH at 1.
Qed.
Lemma take_back (s k r : list N) : s = k ++ r → take (length r) (reverse s) = reverse r.
Proof. intros ->. rewrite reverse_app, <-(length_reverse r). apply take_app_length. Qed.

(** Another text in the same console. *)
Lemma shows_text c l c' a b p :
  shows c l → ascii a → ascii b → text_buffer c' = reverse a ++ b → cursor_pos c' = length a →
  history c' = history c → history_pos c' = p → p = shown l ∨ p = None → shows c' (mk a b (past l) p).
Proof.
  intros [_ _ Hh _ _ _ Hp Hb Hs] Ha Hb' Et Ec Eh Ep Hp'. split; try done; simpl; [by rewrite Eh|].
  intros i Hi. destruct Hp' as [->| ->]; [by apply Hs|done].
Qed.
Lemma shows_end c l c' :
  shows c l → text_buffer c' = text l → cursor_pos c' = Str.len (text l) → history c' = history c →
  history_pos c' = shown l → shows c' (mk (reverse (text l)) [] (past l) (shown l)).
Proof.
  intros Hs Et Ec Eh Ep. pose proof (ascii_text _ (sh_left _ _ Hs) (sh_right _ _ Hs)) as Ha.
  eapply shows_text; [done|by apply Forall_reverse|constructor|by rewrite reverse_involutive, app_nil_r| |done|done|by left].
  by rewrite Ec, length_reverse, len_ascii.
Qed.
Lemma delete_under_shows c l :
  shows c l → ∃ c', delete_under c = Return c' ∧ shows c' (mk (left l) (tail (right l)) (past l) (shown l)).
Proof.
  intros Hs. unfold delete_under. rewrite (len_text _ _ Hs). unfold Str.remove.
  rewrite (split_shown _ _ Hs), (sh_cursor _ _ Hs). destruct Hs as [Et Ec Eh Ep Hl Hr Hp Hb Hsh].
  destruct (right l) as [|ch r] eqn:Er; simpl.
  - rewrite (proj2 (Nat.ltb_ge _ _)) by lia. eexists. split; [done|].
    split; try done. by rewrite Et; unfold text; rewrite Er.
  - rewrite (proj2 (Nat.ltb_lt _ _)) by lia. eexists. split; [done|].
    apply Forall_cons in Hr as [_ Hr]. split; done.
Qed.
Lemma delete_word_shows c l :
  shows c l → ∃ c', delete_word_before_cursor c = Return c' ∧ shows c' (ctrl KeyCode.W l).
Proof.
  intros Hs. unfold delete_word_before_cursor. cbn [ctrl].
  destruct (Nat.eqb_spec (cursor_pos c) 0) as [E|E].
  - exists c. split; [done|]. rewrite (sh_cursor _ _ Hs) in E. apply nil_length_inv in E. rewrite E. simpl.
    destruct Hs as [Et Ec Eh Ep Hl Hr Hp Hb Hsh]. rewrite E in *. split; try done. by rewrite Et; unfold text; rewrite E.
  - rewrite (split_shown _ _ Hs). cbn [expect mbind outcome_bind].
    pose proof (back_while_spec Str.is_whitespace (reverse (left l)) []) as E1.
    rewrite app_nil_r, reverse_involutive in E1. rewrite E1.
    destruct (drop_while_suffix Str.is_whitespace (left l)) as [k1 K1].
    set (l1 := drop_while Str.is_whitespace (left l)) in *.
    pose proof (back_while_spec (λ ch, negb (Str.is_whitespace ch)) (reverse l1) (reverse k1)) as E2.
    rewrite <-reverse_app, <-K1, length_reverse, reverse_involutive in E2. rewrite E2.
    destruct (drop_while_suffix (λ ch, negb (Str.is_whitespace ch)) l1) as [k2 K2].
    set (l2 := drop_while (λ ch, negb (Str.is_whitespace ch)) l1) in *. clearbody l1 l2.
    rewrite (take_back (left l) (k1 ++ k2) l2) by (by rewrite <-app_assoc, <-K2).
    eexists. split; [done|].
    assert (ascii l2) as H2.
    { pose proof (sh_left _ _ Hs) as Hl. rewrite K1, K2 in Hl. apply Forall_app in Hl as [_ Hl].
      by apply Forall_app in Hl as [_ Hl]. }
    eapply shows_text; [exact Hs|done|by apply (sh_right _ _ Hs)|done| |done|by apply (sh_pos _ _ Hs)|by left].
    simpl. by rewrite len_ascii, length_reverse by by apply Forall_reverse.
Qed.
Lemma recall_shows c l i :
  shows c l → i < length (past l) → ∃ c', recall i c = Return c' ∧ shows c' (show i l).
Proof.
  intros Hs Hi. unfold recall, show. rewrite (sh_history _ _ Hs). apply lookup_lt_is_Some in Hi as [t Ht].
  rewrite Ht. simpl. eexists. split; [done|]. destruct Hs as [Et Ec Eh Ep Hl Hr Hp Hb Hsh].
  assert (ascii t) as Ha by (by apply (Forall_lookup_1 _ _ _ _ Hp Ht)).
  split; try done; simpl.
  - unfold text. simpl. by rewrite reverse_involutive, app_nil_r.
  - by rewrite length_reverse, len_ascii.
  - by apply Forall_reverse.
  - constructor.
  - intros j [= <-]. by apply lookup_lt_Some in Ht.
Qed.
Lemma cleared_shows c l c' :
  shows c l → text_buffer c' = [] → cursor_pos c' = 0 → history c' = history c → history_pos c' = None →
  shows c' (cleared l).
Proof. intros Hs Et Ec Eh Ep. eapply shows_text; try done; [constructor|constructor|by right]. Qed.
Lemma enter_shows c l :
  shows c l → (enter c).1 = Some (text l) ∧
  shows (enter c).2 (mk [] [] (if bool_decide (text l = []) then past l else last_100 (past l ++ [text l])) None).
Proof.
  intros Hs. unfold enter. rewrite (sh_text _ _ Hs). split; [done|].
  pose proof (ascii_text _ (sh_left _ _ Hs) (sh_right _ _ Hs)) as Ha.
  destruct Hs as [Et Ec Eh Ep Hl Hr Hp Hb Hsh]. case_bool_decide; [split; try done; constructor|]. rewrite Eh. unfold last_100.
  rewrite length_app. simpl (length [_]).
  assert ((if 100 <=? length (past l) then drop 1 (past l) else past l) ++ [text l]
          = drop (length (past l) + 1 - 100) (past l ++ [text l])) as E.
  { destruct (Nat.leb_spec 100 (length (past l))).
    - replace (length (past l) + 1 - 100) with 1 by lia. by rewrite drop_app_le by lia.
    - replace (length (past l) + 1 - 100) with 0 by lia. done. }
  rewrite <-E. split; try done; simpl.
  - destruct (100 <=? length (past l)); simpl; by rewrite Eh.
  - constructor.
  - constructor.
  - apply Forall_app. split; [|by apply Forall_singleton]. case_match; [by apply Forall_drop|done].
  - rewrite length_app. simpl. destruct (Nat.leb_spec 100 (length (past l))); rewrite ?length_drop; lia.
Qed.
Lemma typed_char_ascii key ch : key_to_char key = Some ch → (ch < 128)%N.
Proof. unfold key_to_char. destruct (KeyEvent.code key); intros [= <-]; lia. Qed.

Lemma ctrl_shows key c l :
  shows c l → ∃ c', handle_ctrl_key key c = Return (None, c') ∧ shows c' (ctrl (KeyEvent.code key) l).
Proof.
  intros Hs. pose proof (ascii_text _ (sh_left _ _ Hs) (sh_right _ _ Hs)) as Ha.
  unfold handle_ctrl_key. destruct (KeyEvent.code key); try (by eexists); cbn [ctrl].
  - eexists. split; [done|]. eapply shows_text; try done; [constructor|by apply (sh_text _ _ Hs)|by apply (sh_pos _ _ Hs)|by left].
  - eexists. split; [done|]. by apply (cleared_shows c).
  - destruct (delete_under_shows c l Hs) as (c' & -> & Hc'). by eexists.
  - eexists. split; [done|]. eapply shows_end; try done; simpl; [by apply (sh_text _ _ Hs)| |by apply (sh_pos _ _ Hs)].
    by rewrite (sh_text _ _ Hs).
  - unfold truncate. rewrite (len_text _ _ Hs), (sh_cursor _ _ Hs), (proj2 (Nat.leb_le _ _)) by lia.
    rewrite <-(sh_cursor _ _ Hs), (split_shown _ _ Hs). simpl. eexists. split; [done|].
    eapply shows_text; try done; [by apply (sh_left _ _ Hs)|constructor|by rewrite app_nil_r|by apply (sh_cursor _ _ Hs)
      |by apply (sh_pos _ _ Hs)|by left].
  - eexists. split; [done|]. eapply shows_text; try done; [constructor|constructor|by apply (sh_pos _ _ Hs)|by left].
  - unfold drain_to. rewrite (split_shown _ _ Hs). simpl. eexists. split; [done|].
    eapply shows_text; try done; [constructor|by apply (sh_right _ _ Hs)|by apply (sh_pos _ _ Hs)|by left].
  - destruct (delete_word_shows c l Hs) as (c' & -> & Hc'). by eexists.
Qed.
Lemma typed_shows key c l :
  shows c l →
  ∃ c', match key_to_char key with
        | Some ch => b ← Str.insert (cursor_pos c) ch (text_buffer c);
            Return (@None Str.t, c <| text_buffer := b |> <| cursor_pos ::= S |> <| history_pos := None |>)
        | None => Return (None, c)
        end = Return (None, c')
  ∧ shows c' match key_to_char key with Some ch => mk (ch :: left l) (right l) (past l) None | None => l end.
Proof.
  intros Hs. destruct (key_to_char key) as [ch|] eqn:Ek; [|by eexists]. apply typed_char_ascii in Ek.
  unfold Str.insert. rewrite (split_shown _ _ Hs). simpl. eexists. split; [done|].
  eapply shows_text; try done; [constructor; [done|by apply (sh_left _ _ Hs)]|by apply (sh_right _ _ Hs)| | |by right].
  - simpl. by rewrite reverse_cons, <-app_assoc.
  - simpl. by rewrite (sh_cursor _ _ Hs).
Qed.
Lemma backspace_shows c l :
  shows c l →
  ∃ c', (if 0 <? cursor_pos c
         then b ← Str.remove (cursor_pos c - 1) (text_buffer c);
              Return (@None Str.t, c <| text_buffer := b |> <| cursor_pos ::= pred |>)
         else Return (None, c)) = Return (None, c')
  ∧ shows c' (mk (tail (left l)) (right l) (past l) (shown l)).
Proof.
  intros Hs. rewrite (sh_cursor _ _ Hs). destruct (left l) as [|ch a] eqn:El.
  - eexists. split; [done|]. destruct Hs as [Et Ec Eh Ep Hl Hr Hp Hb Hsh]. rewrite El in *.
    split; try done. by rewrite Et; unfold text; rewrite El.
  - simpl (length _). rewrite (proj2 (Nat.ltb_lt _ _)) by lia. pose proof (sh_left _ _ Hs) as Hl. rewrite El in Hl.
    apply Forall_cons in Hl as [Hch Hl]. unfold Str.remove. rewrite (sh_text _ _ Hs), split_at_ascii.
    + unfold text. rewrite El, reverse_cons, <-app_assoc. replace (S (length a) - 1) with (length (reverse a))
        by (rewrite length_reverse; lia). rewrite take_app_length, drop_app_length. simpl.
      eexists. split; [done|]. eapply shows_text; try done; [by apply (sh_right _ _ Hs)| |by apply (sh_pos _ _ Hs)|by left].
      simpl. by rewrite (sh_cursor _ _ Hs), El.
    + apply ascii_text; [by apply (sh_left _ _ Hs)|by apply (sh_right _ _ Hs)].
    + unfold text. rewrite length_app, length_reverse, El. simpl. lia.
Qed.
Lemma arrows_show c l :
  shows c l →
  shows (if 0 <? cursor_pos c then c <| cursor_pos ::= pred |> else c)
    match left l with ch :: a => mk a (ch :: right l) (past l) (shown l) | [] => l end ∧
  shows (if cursor_pos c <? Str.len (text_buffer c) then c <| cursor_pos ::= S |> else c)
    match right l with ch :: b => mk (ch :: left l) b (past l) (shown l) | [] => l end.
Proof.
  intros Hs. pose proof (sh_left _ _ Hs) as Hl. pose proof (sh_right _ _ Hs) as Hr. rewrite (len_text _ _ Hs), (sh_cursor _ _ Hs). split.
  - destruct (left l) as [|ch a] eqn:El; [done|]. simpl (length _). rewrite (proj2 (Nat.ltb_lt _ _)) by lia.
    apply Forall_cons in Hl as [Hch Hl].
    eapply shows_text; try done; [by constructor| | |by apply (sh_pos _ _ Hs)|by left]; simpl.
    + rewrite (sh_text _ _ Hs). unfold text. by rewrite El, reverse_cons, <-app_assoc.
    + by rewrite (sh_cursor _ _ Hs), El.
  - destruct (right l) as [|ch b] eqn:Er.
    + rewrite (proj2 (Nat.ltb_ge _ _)) by (simpl; lia). done.
    + rewrite (proj2 (Nat.ltb_lt _ _)) by (simpl; lia). apply Forall_cons in Hr as [Hch Hr].
      eapply shows_text; try done; [by constructor| | |by apply (sh_pos _ _ Hs)|by left]; simpl.
      * rewrite (sh_text _ _ Hs). unfold text. by rewrite Er, reverse_cons, <-app_assoc.
      * by rewrite (sh_cursor _ _ Hs).
Qed.
Lemma up_shows c l :
  shows c l →
  ∃ c', (if bool_decide (history c = []) then Return (@None Str.t, c)
         else
           c ← recall match history_pos c with
                      | None => length (history c) - 1
                      | Some p => if 0 <? p then p - 1 else p
                      end c;
           Return (None, c)) = Return (None, c')
  ∧ shows c' (show match shown l with None => length (past l) - 1 | Some i => i - 1 end l).
Proof.
  intros Hs. rewrite (sh_history _ _ Hs), (sh_pos _ _ Hs). case_bool_decide as E.
  { eexists. split; [done|]. unfold show. rewrite E. by rewrite lookup_nil. }
  assert (0 < length (past l)) by (destruct (past l); simpl; [done|lia]).
  assert ((match shown l with None => length (past l) - 1 | Some p => if 0 <? p then p - 1 else p end)
          = match shown l with None => length (past l) - 1 | Some i => i - 1 end) as ->.
  { destruct (shown l) as [i|]; [|done]. destruct (Nat.ltb_spec 0 i); lia. }
  destruct (recall_shows c l match shown l with None => length (past l) - 1 | Some i => i - 1 end) as (c' & -> & Hc');
    [done| |by eexists].
  destruct (shown l) as [i|] eqn:Ei; [|lia]. pose proof (sh_shown _ _ Hs i Ei). lia.
Qed.
Lemma down_shows c l :
  shows c l →
  ∃ c', match history_pos c with
        | Some pos =>
            if pos + 1 <? length (history c) then c ← recall (pos + 1) c; Return (@None Str.t, c)
            else Return (None, c <| history_pos := None |> <| text_buffer := [] |> <| cursor_pos := 0 |>)
        | None => Return (None, c)
        end = Return (None, c')
  ∧ shows c' match shown l with
             | Some i => if S i <? length (past l) then show (S i) l else cleared l
             | None => l
             end.
Proof.
  intros Hs. rewrite (sh_history _ _ Hs), (sh_pos _ _ Hs). destruct (shown l) as [i|]; [|by eexists].
  rewrite Nat.add_1_r. destruct (Nat.ltb_spec (S i) (length (past l))) as [Hi|Hi].
  - destruct (recall_shows c l (S i) Hs Hi) as (c' & -> & Hc'). by eexists.
  - eexists. split; [done|]. by apply (cleared_shows c).
Qed.

Lemma plain_shows key c l :
  Modifiers.is_ctrl (KeyEvent.modifiers key) = false → shows c l →
  ∃ c', handle_key_press key c = Return ((plain key l).1, c') ∧ shows c' (plain key l).2.
Proof.
  intros Hk Hs. unfold handle_key_press, plain. rewrite Hk.
  destruct (KeyEvent.code key) eqn:Ec; cbn [fst snd]; try (by apply typed_shows).
  - eexists. split; [done|]. by apply (cleared_shows c).
  - destruct (enter_shows c l Hs) as [E1 E2]. destruct (enter c) as [o c']. simpl in *. subst o. by eexists.
  - by apply backspace_shows.
  - destruct (delete_under_shows c l Hs) as (c' & -> & Hc'). by eexists.
  - eexists. split; [done|]. eapply shows_text; try done; [constructor|apply ascii_text|by apply (sh_text _ _ Hs)
      |by apply (sh_pos _ _ Hs)|by left]; by destruct Hs.
  - eexists. split; [done|]. eapply shows_end; try done; simpl; [by apply (sh_text _ _ Hs)| |by apply (sh_pos _ _ Hs)].
    by rewrite (sh_text _ _ Hs).
  - unfold key_to_char. rewrite Ec. by eexists.
  - unfold key_to_char. rewrite Ec. by eexists.
  - by apply up_shows.
  - by apply down_shows.
  - eexists. split; [done|]. by apply arrows_show.
  - eexists. split; [done|]. by apply arrows_show.
Qed.
Lemma event_shows e c l :
  shows c l → ∃ c', process_event e c = Return ((press e l).1, c') ∧ shows c' (press e l).2.
Proof.
  intros Hs. unfold process_event, press.
  assert (shows (c <| event_buffer ::= λ l, l ++ [e] |>) l) as Hs' by (by destruct Hs; split).
  destruct (InputEvent.as_key e) as [key|]; [|by eexists]. destruct (negb _); [by eexists|].
  destruct (Modifiers.is_ctrl _) eqn:Ek; [|by apply plain_shows].
  unfold handle_key_press. rewrite Ek. by apply ctrl_shows.
Qed.
Lemma all_show events c l :
  shows c l → ∃ c', process_all events c = Return ((typed events l).1, c') ∧ shows c' (typed events l).2.
Proof.
  revert c l. induction events as [|e events IH]; intros c l Hs; [by eexists|]. cbn [process_all typed].
  destruct (event_shows e c l Hs) as (c1 & -> & H1). cbn [mbind outcome_bind].
  destruct (press e l) as [o l1]. cbn [fst snd] in *.
  destruct (IH c1 l1 H1) as (c2 & -> & H2). cbn [mbind outcome_bind].
  destruct (typed events l1) as [os l2]. by eexists.
Qed.

(** C23: The console is a line editor: whatever the keys, it returns, hands out the commands that the
    specification hands out, and shows the specification's text, cursor and history of at most 100
    lines; word deletion, history and the control keys included. *)
Theorem console_is_line_editor task events :
  ∃ c, process_all events (new task) = Return ((typed events empty).1, c) ∧
    text_buffer c = text (typed events empty).2 ∧ cursor_pos c = length (left (typed events empty).2) ∧
    history c = past (typed events empty).2 ∧ history_pos c = shown (typed events empty).2 ∧ length (history c) ≤ 100.
Proof.
  destruct (all_show events (new task) empty) as (c & E & [Et Ec Eh Ep _ _ _ Hb _]).
  { split; try done; simpl; try constructor. lia. }
  exists c. by rewrite Eh.
Qed.
End LineProps.

(** ** The commands ([commands.rs]) *)

Section commands.
#[local] Open Scope N_scope.

(** [String::from_utf8_lossy]: every maximal piece that is not UTF-8 becomes U+FFFD. *)
Definition second_byte (b0 : N) (b1 : N) : bool :=
  if b0 =? 0xE0 then (0xA0 <=? b1) && (b1 <=? 0xBF)
  else if b0 =? 0xED then (0x80 <=? b1) && (b1 <=? 0x9F)
  else if b0 =? 0xF0 then (0x90 <=? b1) && (b1 <=? 0xBF)
  else if b0 =? 0xF4 then (0x80 <=? b1) && (b1 <=? 0x8F)
  else Utf8.continuation b1.
Fixpoint from_utf8_lossy (bytes : list N) : Str.t :=
  match bytes with
  | [] => []
  | b0 :: r0 =>
      if b0 <? 0x80 then b0 :: from_utf8_lossy r0
      else if (0xC2 <=? b0) && (b0 <=? 0xDF) then
        match r0 with
        | b1 :: r1 => if Utf8.continuation b1 then ((b0 - 0xC0) * 64 + (b1 - 0x80)) :: from_utf8_lossy r1
                      else 0xFFFD :: from_utf8_lossy r0
        | [] => [0xFFFD]
        end
      else if (0xE0 <=? b0) && (b0 <=? 0xEF) then
        match r0 with
        | b1 :: r1 =>
            if second_byte b0 b1 then
              match r1 with
              | b2 :: r2 =>
                  if Utf8.continuation b2
                  then ((b0 - 0xE0) * 4096 + (b1 - 0x80) * 64 + (b2 - 0x80)) :: from_utf8_lossy r2
                  else 0xFFFD :: from_utf8_lossy r1
              | [] => [0xFFFD]
              end
            else 0xFFFD :: from_utf8_lossy r0
        | [] => [0xFFFD]
        end
      else if (0xF0 <=? b0) && (b0 <=? 0xF4) then
        match r0 with
        | b1 :: r1 =>
            if second_byte b0 b1 then
              match r1 with
              | b2 :: r2 =>
                  if Utf8.continuation b2 then
                    match r2 with
                    | b3 :: r3 =>
                        if Utf8.continuation b3
                        then ((b0 - 0xF0) * 262144 + (b1 - 0x80) * 4096 + (b2 - 0x80) * 64 + (b3 - 0x80))
                             :: from_utf8_lossy r3
                        else 0xFFFD :: from_utf8_lossy r2
                    | [] => [0xFFFD]
                    end
                  else 0xFFFD :: from_utf8_lossy r1
              | [] => [0xFFFD]
              end
            else 0xFFFD :: from_utf8_lossy r0
        | [] => [0xFFFD]
        end
      else 0xFFFD :: from_utf8_lossy r0
  end.
End commands.

Module CommandHandler.
Section handler.
#[local] Open Scope N_scope.
Context `{HashOrder} `{UuidFormat}.

(* cli_console/src/commands.rs:157-164 CommandHandler *)
Record t := mk {
  fs_service : FileSystemViewService.t;
  root : DirectoryView.t;
  storage : JournaledStorage.t
}.
#[global] Instance rebuild_t : Rebuild t := λ h, mk (fs_service h) (root h) (storage h).
(** The service holds a copy of the root. *)
(* cli_console/src/commands.rs:168-181 CommandHandler::new *)
Definition new (root_id : ObjectId.t) : t :=
  let root := DirectoryView.new root_id in
  mk (FileSystemViewService.register_directory root FileSystemViewService.new) root JournaledStorage.new.
(** The answer of the service, with the name of the command before an error. *)
Definition failed (command : string) (e : OperationError.t) : Str.t :=
  str (command +:+ " failed: ") ++ OperationError.display e.
(* cli_console/src/commands.rs:186-194 CommandHandler::ls *)
Definition ls (path : Str.t) (h : t) : result (list Str.t) Str.t :=
  match FileSystemViewService.ls (root h) path (fs_service h) with
  | Err e => Err (failed "ls" e)
  | Ok entries => Ok (DirectoryEntry.name <$> entries)
  end.
(** When reading fails, the transaction is not ended. *)
(* cli_console/src/commands.rs:199-216 CommandHandler::cat *)
Definition cat (drawn : TransactionId.t) (path : Str.t) (h : t) : result Str.t Str.t * t :=
  let refused e := Err (str "cat failed: " ++ utf8_text (TransactionError.display e)) in
  match FileSystemViewService.open (root h) path (fs_service h) with
  | Err e => (Err (failed "cat" e), h)
  | Ok obj_id =>
      match JournaledStorage.begin_transaction drawn (storage h) with
      | (Err e, s) => (refused e, h <| storage := s |>)
      | (Ok tx, s) =>
          match JournaledStorage.read_data tx obj_id s with
          | Err e => (refused e, h <| storage := s |>)
          | Ok bytes => (Ok (from_utf8_lossy bytes), h <| storage := (JournaledStorage.rollback (tx, s)).2.2 |>)
          end
      end
  end.
(** A mutation of the service, on the root and the registered directories. *)
Definition on_service {A} (f : DirectoryView.t * FileSystemViewService.t
      → result A OperationError.t * (DirectoryView.t * FileSystemViewService.t)) (h : t)
    : result A OperationError.t * t :=
  let '(r, (d, s)) := f (root h, fs_service h) in (r, h <| root := d |> <| fs_service := s |>).
(* cli_console/src/commands.rs:221-228 CommandHandler::mkdir *)
Definition mkdir (drawn : ObjectId.t) (path : Str.t) (h : t) : result Str.t Str.t * t :=
  match on_service (FileSystemViewService.mkdir drawn path) h with
  | (Err e, h) => (Err (failed "mkdir" e), h)
  | (Ok dir_id, h) => (Ok (str "Created directory: " ++ utf8_text (ObjectId.display dir_id)), h)
  end.
(* cli_console/src/commands.rs:233-244 CommandHandler::link *)
Definition link (path : Str.t) (object_id : ObjectId.t) (kind : ObjectKind.t) (h : t) : result Str.t Str.t * t :=
  match on_service (FileSystemViewService.link path object_id kind) h with
  | (Err e, h) => (Err (failed "link" e), h)
  | (Ok _, h) => (Ok (str "Linked " ++ utf8_text (ObjectId.display object_id) ++ str " to " ++ path), h)
  end.
(* cli_console/src/commands.rs:249-265 CommandHandler::stat *)
Definition stat (path : Str.t) (h : t) : result Str.t Str.t :=
  match FileSystemViewService.stat (root h) path (fs_service h) with
  | Err e => Err (failed "stat" e)
  | Ok i =>
      Ok (str "Object ID: " ++ utf8_text (ObjectId.display (StatInfo.id i)) ++ [10]
          ++ str "Kind: " ++ str (ObjectKind.display (StatInfo.kind i)) ++ [10]
          ++ match StatInfo.size i with Some n => str ("Size: " +:+ pretty n +:+ " bytes") ++ [10] | None => [] end
          ++ match StatInfo.entry_count i with Some n => str ("Entries: " +:+ pretty n) ++ [10] | None => [] end)
  end.
End handler.
End CommandHandler.

Module PersistentCommandHandler.
Section handler.
#[local] Open Scope N_scope.
Context {D : Type} `{BlockDevice D} `{StorageJson} `{UuidFormat}.

(* cli_console/src/commands.rs:14-19 PersistentCommandHandler *)
Record t := mk { fs : PersistentFilesystem.t D; current_dir : ObjectId.t }.
#[global] Instance rebuild_t : Rebuild t := λ h, mk (fs h) (current_dir h).
(** The counter is a static variable, shared by all handlers: it is passed along. *)
(* cli_console/src/commands.rs:146-154 get_timestamp *)
Definition get_timestamp (counter : N) : outcome N := add_u64 counter 1.
(* cli_console/src/commands.rs:23-27 PersistentCommandHandler::new *)
Definition new (drawn : PersistentFilesystem.draw) (root_dir_id : ObjectId.t) (device : D) (owner : string)
    : outcome (result t TransactionError.t) :=
  r ← PersistentFilesystem.format drawn root_dir_id device owner;
  Return (map_ok (λ fs, mk fs (PersistentFilesystem.root_dir_id fs)) r).
(* cli_console/src/commands.rs:30-34 PersistentCommandHandler::open *)
Definition open (device : D) (root_dir_id : ObjectId.t) : outcome (result t TransactionError.t) :=
  r ← PersistentFilesystem.open device root_dir_id;
  Return (map_ok (λ fs, mk fs (PersistentFilesystem.root_dir_id fs)) r).
(** A call of the file system, with what to say about its error. *)
Definition on_fs {A} (what : Str.t) (m : outcome (result A TransactionError.t * PersistentFilesystem.t D)) (h : t)
    : outcome (result A Str.t * t) :=
  '(r, f) ← m;
  Return (map_err (λ e, what ++ str ": " ++ utf8_text (TransactionError.display e)) r, h <| fs := f |>).
Definition quoted (s : Str.t) : Str.t := str "'" ++ s ++ str "'".
(* cli_console/src/commands.rs:120-142 PersistentCommandHandler::resolve_path *)
Definition resolve_path (drawn : TransactionId.t) (path : Str.t) (h : t) : outcome (result ObjectId.t Str.t * t) :=
  let path := Str.trim path in
  if bool_decide (path = []) || bool_decide (path = str "/") || bool_decide (path = str ".")
  then Return (Ok (current_dir h), h)
  else
    try! entries, h := on_fs (str "Failed to read current directory")
                         (PersistentFilesystem.list_dir drawn (current_dir h) (fs h)) h in
    Return (match list_find (λ e, e.1 = utf8_string path) entries with
            | Some (_, (_, entry)) => Ok (BlockStore.DirectoryEntry.object_id entry)
            | None => Err (str "Path not found: " ++ quoted path ++ str " (current directory only supported)")
            end, h).
(* cli_console/src/commands.rs:37-46 PersistentCommandHandler::ls *)
Definition ls (d1 d2 : TransactionId.t) (path : Str.t) (h : t) : outcome (result (list string) Str.t * t) :=
  try! dir_id, h := resolve_path d1 path h in
  try! entries, h := on_fs (str "Failed to list directory " ++ quoted path)
                       (PersistentFilesystem.list_dir d2 dir_id (fs h)) h in
  Return (Ok entries.*1, h).
(* cli_console/src/commands.rs:49-54 PersistentCommandHandler::cat *)
Definition cat (d1 d2 : TransactionId.t) (path : Str.t) (h : t) : outcome (result (list N) Str.t * t) :=
  try! file_id, h := resolve_path d1 path h in
  on_fs (str "Failed to read file " ++ quoted path) (PersistentFilesystem.read_file d2 file_id (fs h)) h.
(** A name with no path in it. *)
Definition has_separator (name : Str.t) : bool := bool_decide (47 ∈ name) || bool_decide (92 ∈ name).
Definition check_name (what : string) (name : Str.t) : result unit Str.t :=
  if bool_decide (name = []) then Err (str (what +:+ " name cannot be empty"))
  else if has_separator name then Err (str (what +:+ " name cannot contain path separators"))
  else Ok tt.
(* cli_console/src/commands.rs:57-72 PersistentCommandHandler::mkdir *)
Definition mkdir (new_dir_id : ObjectId.t) (d1 : PersistentFilesystem.draw) (d2 : TransactionId.t)
    (d3 : PersistentFilesystem.draw) (name : Str.t) (counter : N) (h : t) : outcome (result Str.t Str.t * (N * t)) :=
  match check_name "Directory" name with
  | Err e => Return (Err e, (counter, h))
  | Ok _ =>
      timestamp ← get_timestamp counter;
      '(r, h) ← on_fs (str "Failed to create directory " ++ quoted name)
                  (PersistentFilesystem.mkdir new_dir_id d1 d2 d3 (utf8_string name) (current_dir h) "user" timestamp
                     (fs h)) h;
      Return (map_ok (λ dir_id, str "Created directory: " ++ name ++ str " (id: "
                                ++ utf8_text (ObjectId.display dir_id) ++ str ")") r, (timestamp, h))
  end.
(* cli_console/src/commands.rs:75-99 PersistentCommandHandler::write_file *)
Definition write_file (file_id : ObjectId.t) (d1 : PersistentFilesystem.draw) (d2 : TransactionId.t)
    (d3 : PersistentFilesystem.draw) (name : Str.t) (content : list N) (counter : N) (h : t)
    : outcome (result Str.t Str.t * (N * t)) :=
  match check_name "File" name with
  | Err e => Return (Err e, (counter, h))
  | Ok _ =>
      timestamp ← get_timestamp counter;
      '(r, h) ← on_fs (str "Failed to write file " ++ quoted name)
                  (PersistentFilesystem.write_file file_id d1 content (fs h)) h;
      match r with
      | Err e => Return (Err e, (timestamp, h))
      | Ok file_id =>
          '(r, h) ← on_fs (str "Failed to link file " ++ quoted name)
                      (PersistentFilesystem.link d2 d3 (utf8_string name) (current_dir h) file_id ObjectKind.Blob
                         timestamp (fs h)) h;
          Return (map_ok (λ _, str "Wrote file: " ++ name ++ str (" (" +:+ pretty (len content) +:+ " bytes, id: ")
                               ++ utf8_text (ObjectId.display file_id) ++ str ")") r, (timestamp, h))
      end
  end.
(* cli_console/src/commands.rs:102-117 PersistentCommandHandler::rm *)
Definition rm (d1 : TransactionId.t) (d2 : PersistentFilesystem.draw) (name : Str.t) (counter : N) (h : t)
    : outcome (result Str.t Str.t * (N * t)) :=
  if bool_decide (name = []) then Return (Err (str "File name cannot be empty"), (counter, h))
  else
    timestamp ← get_timestamp counter;
    '(r, h) ← on_fs (str "Failed to remove " ++ quoted name)
                (PersistentFilesystem.unlink d1 d2 (utf8_string name) (current_dir h) timestamp (fs h)) h;
    Return (match r with
            | Err e => Err e
            | Ok (Some entry) => Ok (str "Removed: " ++ name ++ str " (id: "
                                     ++ utf8_text (ObjectId.display (BlockStore.DirectoryEntry.object_id entry)) ++ str ")")
            | Ok None => Err (str "Not found: " ++ quoted name)
            end, (timestamp, h)).
End handler.
End PersistentCommandHandler.

Module CommandProps.
Import CommandHandler.
#[local] Open Scope N_scope.
#[local] Ltac Zify.zify_post_hook ::= Z.to_euclidean_division_equations.

(** Text decodes to itself. *)
Lemma lossy_encode c rest : Utf8.scalar c → from_utf8_lossy (Utf8.encode c ++ rest) = c :: from_utf8_lossy rest.
Proof.
  intros Hc. unfold Utf8.encode, Utf8.scalar in *.
  destruct (N.ltb_spec c 0x80) as [H1|H1].
  { cbn [app from_utf8_lossy]. by rewrite (proj2 (N.ltb_lt c 0x80)) by lia. }
  destruct (N.ltb_spec c 0x800) as [H2|H2]; [|destruct (N.ltb_spec c 0x10000) as [H3|H3]];
    cbn [app from_utf8_lossy]; rewrite ?Utf8.continuation_mod; repeat first
      [ rewrite Utf8.ltb_false by lia | rewrite Utf8.in_range_true by lia | rewrite Utf8.in_range_false by lia ].
  - f_equal. lia.
  - assert (second_byte (0xE0 + c / 4096) (0x80 + (c / 64) mod 64) = true) as ->; [|f_equal; lia].
    unfold second_byte. destruct (N.eqb_spec (0xE0 + c / 4096) 0xE0); [apply Utf8.in_range_true; lia|].
    destruct (N.eqb_spec (0xE0 + c / 4096) 0xED); [apply Utf8.in_range_true; lia|].
    rewrite (proj2 (N.eqb_neq _ 0xF0)), (proj2 (N.eqb_neq _ 0xF4)) by lia. apply Utf8.continuation_mod.
  - assert (second_byte (0xF0 + c / 262144) (0x80 + (c / 4096) mod 64) = true) as ->; [|f_equal; lia].
    unfold second_byte. rewrite (proj2 (N.eqb_neq _ 0xE0)), (proj2 (N.eqb_neq _ 0xED)) by lia.
    destruct (N.eqb_spec (0xF0 + c / 262144) 0xF0); [apply Utf8.in_range_true; lia|].
    destruct (N.eqb_spec (0xF0 + c / 262144) 0xF4); [apply Utf8.in_range_true; lia|]. apply Utf8.continuation_mod.
Qed.
Lemma lossy_text s : Forall Utf8.scalar s → from_utf8_lossy (Utf8.as_bytes s) = s.
Proof.
  induction 1 as [|c s Hc _ IH]; [done|]. change (Utf8.as_bytes (c :: s)) with (Utf8.encode c ++ Utf8.as_bytes s).
  by rewrite lossy_encode, IH.
Qed.

Section with_format.
Context `{HashOrder} `{UuidFormat}.

(** [cat] prints the text whose bytes are the last committed version of the object that the path
    names, and leaves the handler as it was. *)
Theorem cat_prints_stored_text drawn path h o vs v s :
  FileSystemViewService.open (root h) path (fs_service h) = Ok o →
  JournaledStorage.objects (storage h) !! o = Some vs → last vs = Some v →
  VersionEntry.data v = Utf8.as_bytes s → Forall Utf8.scalar s →
  JournaledStorage.pending (storage h) !! drawn = None →
  cat drawn path h = (Ok s, h).
Proof.
  intros Eo Ev El Ed Hs Hp. unfold cat. rewrite Eo. unfold JournaledStorage.begin_transaction.
  unfold JournaledStorage.read_data, JournaledStorage.own_write. simpl. rewrite Hp. simpl. rewrite Ev, El. simpl.
  rewrite Ed, lossy_text by done. f_equal. destruct h as [f d [objs j p]]. simpl in *.
  unfold update_field; simpl. by rewrite delete_id.
Qed.

(** The calls of the handler. *)
Inductive op :=
| Mkdir (drawn : ObjectId.t) (path : Str.t)
| Link (path : Str.t) (o : ObjectId.t) (k : ObjectKind.t)
| Cat (drawn : TransactionId.t) (path : Str.t).
Definition exec (h : t) (c : op) : t :=
  match c with
  | Mkdir drawn path => (mkdir drawn path h).2
  | Link path o k => (link path o k h).2
  | Cat drawn path => (cat drawn path h).2
  end.
Lemma exec_storage h c : storage h = JournaledStorage.new → storage (exec h c) = JournaledStorage.new.
Proof.
  intros Hs. destruct c; simpl.
  - unfold mkdir, on_service. destruct (FileSystemViewService.mkdir _ _ _) as [[] [d s]]; done.
  - unfold link, on_service. destruct (FileSystemViewService.link _ _ _ _) as [[] [d s]]; done.
  - unfold cat. destruct (FileSystemViewService.open _ _ _); [|done]. by rewrite Hs.
Qed.
(** No call of the handler stores anything, so [cat] fails for every path after every history. *)
Lemma cat_always_fails root_id ops drawn path : ∃ e h, cat drawn path (foldl exec (new root_id) ops) = (Err e, h).
Proof.
  assert (storage (foldl exec (new root_id) ops) = JournaledStorage.new) as Hs.
  { assert (∀ h, storage h = JournaledStorage.new → storage (foldl exec h ops) = JournaledStorage.new) as Hf.
    { induction ops as [|c ops IH]; intros h Hh; [done|]. by apply IH, exec_storage. }
    by apply Hf. }
  unfold cat. rewrite Hs. destruct (FileSystemViewService.open _ _ _); by do 2 eexists.
Qed.
End with_format.

#[local] Existing Instances canonical_order sample_format.
Definition stored : t :=
  (link (str "note") (ObjectId.from_uuid 9) ObjectKind.Blob (new (ObjectId.from_uuid 1))).2
  <| storage := JournaledStorage.mk {[ ObjectId.from_uuid 9 := [VersionEntry.mk (VersionId.from_uuid 3)
                                                                 (Utf8.as_bytes [104; 233])] ]} [] ∅ |>.
Lemma cat_prints_stored_text_witness : cat (TransactionId.mk 5) (str "note") stored = (Ok [104; 233], stored).
Proof.
  eapply (cat_prints_stored_text (TransactionId.mk 5) (str "note") stored (ObjectId.from_uuid 9)
    [VersionEntry.mk (VersionId.from_uuid 3) (Utf8.as_bytes [104; 233])]
    (VersionEntry.mk (VersionId.from_uuid 3) (Utf8.as_bytes [104; 233]))).
  - vm_compute. reflexivity.
  - vm_compute. reflexivity.
  - reflexivity.
  - reflexivity.
  - apply (bool_decide_unpack _). vm_compute. exact I.
  - reflexivity.
Defined.
End CommandProps.
