(* ===== verification/VgaConsole.v ===== *)
(** * The VGA text console

    [console_vga/src/{lib,scrollback,selection,tiling}.rs]: the 80 by 25 text buffer of a VGA card,
    written through a raw pointer, the scrollback that feeds it, the selection and the clipboard, and
    the split of the screen in two tiles; [console_fb/src/scrollback.rs], the same scrollback without
    attributes.

    The text buffer is the list of its 4000 bytes; a write beyond it, which in Rust is undefined, is
    [Panic] here, so that returning is staying inside the buffer. *)

From S2P Require Import Prelude Editor Text.
Open Scope string_scope.
Open Scope list_scope.
Open Scope nat_scope.

(** ** Scrollback *)

(** What both scrollbacks do to their list of lines, whatever a line is. *)
Module Scroll.
Section lines.
Context {L : Type}.
(** [while lines.len() > max { lines.remove(0) }]. *)
Definition keep_last (max : nat) (lines : list L) : list L := drop (length lines - max) lines.
Definition max_scroll_up (rows : nat) (lines : list L) : nat :=
  if rows <? length lines then length lines - rows else 0.
(** The lines of the viewport; the subtraction panics when the offset is beyond the lines. *)
Definition visible (rows offset : nat) (lines : list L) : outcome (list L) :=
  let total := length lines in
  if total =? 0 then Return []
  else if offset <=? total
  then let to := total - offset in let from := to - rows in Return (take (to - from) (drop from lines))
  else Panic.
End lines.
End Scroll.

Module VgaLine.
(* console_vga/src/scrollback.rs:16-22 VgaLine *)
Record t := mk { text : list N; attrs : list N }.
#[global] Instance rebuild_t : Rebuild t := λ l, mk (text l) (attrs l).
(* console_vga/src/scrollback.rs:25-31 VgaLine::new *)
Definition new (cols : nat) (default_attr : N) : t := mk [] [].
(* console_vga/src/scrollback.rs:33-47 VgaLine::from_text *)
Definition from_text (s : Str.t) (attr : N) (cols : nat) : t :=
  let bytes := take cols (Utf8.as_bytes s) in mk bytes ((λ _, attr) <$> bytes).
(* console_vga/src/scrollback.rs:49-52 VgaLine::as_str *)
Definition as_str (l : t) : Str.t := default [] (Utf8.from_utf8 (text l)).
(* console_vga/src/scrollback.rs:54-57 VgaLine::len *)
Definition len (l : t) : nat := length (text l).
(* console_vga/src/scrollback.rs:59-62 VgaLine::is_empty *)
Definition is_empty (l : t) : bool := bool_decide (text l = []).
(* console_vga/src/scrollback.rs:64-68 VgaLine::clear *)
Definition clear (l : t) : t := mk [] [].
(* console_vga/src/scrollback.rs:70-79 VgaLine::push *)
Definition push (ch attr : N) (max_cols : nat) (l : t) : bool * t :=
  if length (text l) <? max_cols then (true, mk (text l ++ [ch]) (attrs l ++ [attr])) else (false, l).
End VgaLine.

Module VgaScrollback.
(* console_vga/src/scrollback.rs:85-96 VgaScrollback *)
Record t := mk { max_lines : nat; cols : nat; viewport_rows : nat; lines : list VgaLine.t; viewport_offset : nat }.
#[global] Instance rebuild_t : Rebuild t := λ b,
  mk (max_lines b) (cols b) (viewport_rows b) (lines b) (viewport_offset b).
(* console_vga/src/scrollback.rs:99-114 VgaScrollback::new *)
Definition new (cols viewport_rows max_lines : nat) (default_attr : N) : t := mk max_lines cols viewport_rows [] 0.
(* console_vga/src/scrollback.rs:126-129 VgaScrollback::total_lines *)
Definition total_lines (b : t) : nat := length (lines b).
(* console_vga/src/scrollback.rs:136-150 VgaScrollback::push_line *)
Definition push_line (s : Str.t) (attr : N) (b : t) : t :=
  b <| lines := Scroll.keep_last (max_lines b) (lines b ++ [VgaLine.from_text s attr (cols b)]) |>
    <| viewport_offset := 0 |>.
(* console_vga/src/scrollback.rs:152-157 VgaScrollback::push_text *)
Definition push_text (s : Str.t) (attr : N) (b : t) : t := foldl (λ b l, push_line l attr b) b (Str.lines s).
(* console_vga/src/scrollback.rs:209-216 VgaScrollback::max_scroll_up *)
Definition max_scroll_up (b : t) : nat := Scroll.max_scroll_up (viewport_rows b) (lines b).
(* console_vga/src/scrollback.rs:173-185 VgaScrollback::scroll_up *)
Definition scroll_up (n : nat) (b : t) : bool * t :=
  let max_scroll := max_scroll_up b in
  if 0 <? max_scroll then (true, b <| viewport_offset ::= λ o, o + Nat.min n max_scroll |>) else (false, b).
(* console_vga/src/scrollback.rs:187-197 VgaScrollback::scroll_down *)
Definition scroll_down (n : nat) (b : t) : bool * t :=
  if 0 <? viewport_offset b then (true, b <| viewport_offset ::= λ o, o - n |>) else (false, b).
(* console_vga/src/scrollback.rs:159-164 VgaScrollback::page_up *)
Definition page_up (b : t) : bool * t := scroll_up (viewport_rows b) b.
(* console_vga/src/scrollback.rs:166-171 VgaScrollback::page_down *)
Definition page_down (b : t) : bool * t := scroll_down (viewport_rows b) b.
(* console_vga/src/scrollback.rs:199-202 VgaScrollback::scroll_to_bottom *)
Definition scroll_to_bottom (b : t) : t := b <| viewport_offset := 0 |>.
(* console_vga/src/scrollback.rs:204-207 VgaScrollback::scroll_to_top *)
Definition scroll_to_top (b : t) : t := b <| viewport_offset := max_scroll_up b |>.
(* console_vga/src/scrollback.rs:218-232 VgaScrollback::visible_lines *)
Definition visible_lines (b : t) : outcome (list VgaLine.t) :=
  Scroll.visible (viewport_rows b) (viewport_offset b) (lines b).
(* console_vga/src/scrollback.rs:234-238 VgaScrollback::clear *)
Definition clear (b : t) : t := b <| lines := [] |> <| viewport_offset := 0 |>.
(* console_vga/src/scrollback.rs:240-243 VgaScrollback::at_bottom *)
Definition at_bottom (b : t) : bool := viewport_offset b =? 0.
(* console_vga/src/scrollback.rs:245-248 VgaScrollback::at_top *)
Definition at_top (b : t) : bool := max_scroll_up b <=? viewport_offset b.
End VgaScrollback.

(** The scrollback of the frame-buffer console ([console_fb/src/scrollback.rs]). *)
Module Line.
(* console_fb/src/scrollback.rs:14-19 Line *)
Record t := mk { text : list N }.
#[global] Instance rebuild_t : Rebuild t := λ l, mk (text l).
(* console_fb/src/scrollback.rs:22-27 Line::new *)
Definition new (cols : nat) : t := mk [].
(* console_fb/src/scrollback.rs:29-36 Line::from_text *)
Definition from_text (s : Str.t) (cols : nat) : t := mk (take cols (Utf8.as_bytes s)).
(* console_fb/src/scrollback.rs:38-41 Line::as_str *)
Definition as_str (l : t) : Str.t := default [] (Utf8.from_utf8 (text l)).
(* console_fb/src/scrollback.rs:43-46 Line::len *)
Definition len (l : t) : nat := length (text l).
(* console_fb/src/scrollback.rs:53-56 Line::clear *)
Definition clear (l : t) : t := mk [].
(* console_fb/src/scrollback.rs:58-66 Line::push *)
Definition push (ch : N) (max_cols : nat) (l : t) : bool * t :=
  if length (text l) <? max_cols then (true, mk (text l ++ [ch])) else (false, l).
End Line.

Module ScrollbackBuffer.
(* console_fb/src/scrollback.rs:72-83 ScrollbackBuffer *)
Record t := mk { max_lines : nat; cols : nat; viewport_rows : nat; lines : list Line.t; viewport_offset : nat }.
#[global] Instance rebuild_t : Rebuild t := λ b,
  mk (max_lines b) (cols b) (viewport_rows b) (lines b) (viewport_offset b).
(* console_fb/src/scrollback.rs:86-100 ScrollbackBuffer::new *)
Definition new (cols viewport_rows max_lines : nat) : t := mk max_lines cols viewport_rows [] 0.
(* console_fb/src/scrollback.rs:122-136 ScrollbackBuffer::push_line *)
Definition push_line (s : Str.t) (b : t) : t :=
  b <| lines := Scroll.keep_last (max_lines b) (lines b ++ [Line.from_text s (cols b)]) |> <| viewport_offset := 0 |>.
(* console_fb/src/scrollback.rs:138-143 ScrollbackBuffer::push_text *)
Definition push_text (s : Str.t) (b : t) : t := foldl (λ b l, push_line l b) b (Str.lines s).
(* console_fb/src/scrollback.rs:181-188 ScrollbackBuffer::max_scroll_up *)
Definition max_scroll_up (b : t) : nat := Scroll.max_scroll_up (viewport_rows b) (lines b).
(* console_fb/src/scrollback.rs:145-157 ScrollbackBuffer::scroll_up *)
Definition scroll_up (n : nat) (b : t) : bool * t :=
  let max_scroll := max_scroll_up b in
  if 0 <? max_scroll then (true, b <| viewport_offset ::= λ o, o + Nat.min n max_scroll |>) else (false, b).
(* console_fb/src/scrollback.rs:159-169 ScrollbackBuffer::scroll_down *)
Definition scroll_down (n : nat) (b : t) : bool * t :=
  if 0 <? viewport_offset b then (true, b <| viewport_offset ::= λ o, o - n |>) else (false, b).
(* console_fb/src/scrollback.rs:171-174 ScrollbackBuffer::scroll_to_bottom *)
Definition scroll_to_bottom (b : t) : t := b <| viewport_offset := 0 |>.
(* console_fb/src/scrollback.rs:176-179 ScrollbackBuffer::scroll_to_top *)
Definition scroll_to_top (b : t) : t := b <| viewport_offset := max_scroll_up b |>.
(* console_fb/src/scrollback.rs:190-204 ScrollbackBuffer::visible_lines *)
Definition visible_lines (b : t) : outcome (list Line.t) :=
  Scroll.visible (viewport_rows b) (viewport_offset b) (lines b).
(* console_fb/src/scrollback.rs:206-210 ScrollbackBuffer::clear *)
Definition clear (b : t) : t := b <| lines := [] |> <| viewport_offset := 0 |>.
(* console_fb/src/scrollback.rs:212-215 ScrollbackBuffer::at_bottom *)
Definition at_bottom (b : t) : bool := viewport_offset b =? 0.
(* console_fb/src/scrollback.rs:217-220 ScrollbackBuffer::at_top *)
Definition at_top (b : t) : bool := max_scroll_up b <=? viewport_offset b.
End ScrollbackBuffer.

(** ** Selection and clipboard ([selection.rs]) *)

Module SelectionRange.
(** Columns and rows, in this order. *)
(* console_vga/src/selection.rs:9-15 SelectionRange *)
Record t := new { start : nat * nat; finish : nat * nat }.
#[global] Instance rebuild_t : Rebuild t := λ s, new (start s) (finish s).
(* console_vga/src/selection.rs:23-34 SelectionRange::normalized *)
Definition normalized (s : t) : (nat * nat) * (nat * nat) :=
  let '(start_col, start_row) := start s in
  let '(end_col, end_row) := finish s in
  if (start_row <? end_row) || ((start_row =? end_row) && (start_col <=? end_col))
  then (start s, finish s) else (finish s, start s).
(* console_vga/src/selection.rs:36-57 SelectionRange::contains *)
Definition contains (col row : nat) (s : t) : bool :=
  let '((start_col, start_row), (end_col, end_row)) := normalized s in
  if (row <? start_row) || (end_row <? row) then false
  else if (row =? start_row) && (row =? end_row) then (start_col <=? col) && (col <=? end_col)
  else if row =? start_row then start_col <=? col
  else if row =? end_row then col <=? end_col
  else true.
(* console_vga/src/selection.rs:59-62 SelectionRange::is_empty *)
Definition is_empty (s : t) : bool := bool_decide (start s = finish s).
End SelectionRange.

Module Clipboard.
(* console_vga/src/selection.rs:66-70 Clipboard *)
Record t := mk { content : list N }.
(* console_vga/src/selection.rs:73-78 Clipboard::new *)
Definition new : t := mk [].
(* console_vga/src/selection.rs:80-84 Clipboard::copy *)
Definition copy (bytes : list N) (c : t) : t := mk bytes.
(* console_vga/src/selection.rs:86-89 Clipboard::paste *)
Definition paste (c : t) : list N := content c.
(* console_vga/src/selection.rs:91-94 Clipboard::is_empty *)
Definition is_empty (c : t) : bool := bool_decide (content c = []).
(* console_vga/src/selection.rs:101-104 Clipboard::as_str *)
Definition as_str (c : t) : Str.t := default [] (Utf8.from_utf8 (content c)).
End Clipboard.

Module SelectionManager.
(* console_vga/src/selection.rs:114-120 SelectionManager *)
Record t := mk { selection : option SelectionRange.t; clipboard : Clipboard.t }.
#[global] Instance rebuild_t : Rebuild t := λ m, mk (selection m) (clipboard m).
(* console_vga/src/selection.rs:123-129 SelectionManager::new *)
Definition new : t := mk None Clipboard.new.
(* console_vga/src/selection.rs:131-134 SelectionManager::start_selection *)
Definition start_selection (col row : nat) (m : t) : t :=
  m <| selection := Some (SelectionRange.new (col, row) (col, row)) |>.
(* console_vga/src/selection.rs:136-141 SelectionManager::extend_selection *)
Definition extend_selection (col row : nat) (m : t) : t :=
  m <| selection ::= fmap (λ s, s <| SelectionRange.finish := (col, row) |>) |>.
(* console_vga/src/selection.rs:148-151 SelectionManager::clear_selection *)
Definition clear_selection (m : t) : t := m <| selection := None |>.
(* console_vga/src/selection.rs:153-156 SelectionManager::copy_selection *)
Definition copy_selection (bytes : list N) (m : t) : t := m <| clipboard ::= Clipboard.copy bytes |>.
(* console_vga/src/selection.rs:158-161 SelectionManager::paste *)
Definition paste (m : t) : list N := Clipboard.paste (clipboard m).
End SelectionManager.

(** ** Tiles ([tiling.rs]) *)

Module TileBounds.
(* console_vga/src/tiling.rs:16-33 TileBounds *)
Record t := new { x : nat; y : nat; width : nat; height : nat }.
(* console_vga/src/tiling.rs:35-38 TileBounds::contains *)
Definition contains (px py : nat) (b : t) : bool :=
  (x b <=? px) && (px <? x b + width b) && (y b <=? py) && (py <? y b + height b).
(* console_vga/src/tiling.rs:40-43 TileBounds::area *)
Definition area (b : t) : nat := width b * height b.
End TileBounds.

Module TileId.
(* console_vga/src/tiling.rs:47-51 TileId *)
Inductive t := Top | Bottom.
#[global] Instance eq_dec : EqDecision t.
Proof. solve_decision. Defined.
End TileId.

Module TileManager.
(** The layout is the height of the top tile. *)
(* console_vga/src/tiling.rs:68-76 TileManager *)
Record t := mk { screen_width : nat; screen_height : nat; top_height : nat; focused : TileId.t }.
#[global] Instance rebuild_t : Rebuild t := λ m, mk (screen_width m) (screen_height m) (top_height m) (focused m).
(* console_vga/src/tiling.rs:79-87 TileManager::new *)
Definition new (screen_width screen_height top_height : nat) : t := mk screen_width screen_height top_height TileId.Top.
(** [screen_height - 1] panics on a screen without rows. *)
(* console_vga/src/tiling.rs:89-105 TileManager::get_tile_bounds *)
Definition get_tile_bounds (tile : TileId.t) (m : t) : outcome TileBounds.t :=
  if screen_height m =? 0 then Panic
  else
    let top := Nat.min (top_height m) (screen_height m - 1) in
    Return match tile with
           | TileId.Top => TileBounds.new 0 0 (screen_width m) top
           | TileId.Bottom => TileBounds.new 0 top (screen_width m) (screen_height m - top)
           end.
(* console_vga/src/tiling.rs:112-118 TileManager::focus_next *)
Definition focus_next (m : t) : t :=
  m <| focused ::= λ f, match f with TileId.Top => TileId.Bottom | TileId.Bottom => TileId.Top end |>.
(* console_vga/src/tiling.rs:120-123 TileManager::set_focus *)
Definition set_focus (tile : TileId.t) (m : t) : t := m <| focused := tile |>.
(* console_vga/src/tiling.rs:125-128 TileManager::has_focus *)
Definition has_focus (tile : TileId.t) (m : t) : bool := bool_decide (focused m = tile).
(* console_vga/src/tiling.rs:135-138 TileManager::set_layout *)
Definition set_layout (top_height_ : nat) (m : t) : t := m <| top_height := top_height_ |>.
End TileManager.

(** ** The text buffer ([lib.rs]) *)

Module VgaColor.
(* console_vga/src/lib.rs:46-67 VgaColor *)
Inductive t :=
| Black | Blue | Green | Cyan | Red | Magenta | Brown | LightGray | DarkGray | LightBlue | LightGreen
| LightCyan | LightRed | Pink | Yellow | White.
Definition code (c : t) : N :=
  match c with
  | Black => 0 | Blue => 1 | Green => 2 | Cyan => 3 | Red => 4 | Magenta => 5 | Brown => 6 | LightGray => 7
  | DarkGray => 8 | LightBlue => 9 | LightGreen => 10 | LightCyan => 11 | LightRed => 12 | Pink => 13
  | Yellow => 14 | White => 15
  end.
(* console_vga/src/lib.rs:93-96 VgaColor::make_attr *)
Definition make_attr (fg bg : t) : N := N.lor (N.shiftl (code bg) 4) (code fg).
End VgaColor.

Module Style.
(* console_vga/src/lib.rs:69-77 Style *)
Inductive t := Normal | Bold | Error | Success | Info.
(* console_vga/src/lib.rs:80-89 Style::to_vga_attr *)
Definition to_vga_attr (s : t) : N :=
  match s with
  | Normal => VgaColor.make_attr VgaColor.LightGray VgaColor.Black
  | Bold => VgaColor.make_attr VgaColor.LightGreen VgaColor.Black
  | Error => VgaColor.make_attr VgaColor.LightRed VgaColor.Black
  | Success => VgaColor.make_attr VgaColor.LightGreen VgaColor.Black
  | Info => VgaColor.make_attr VgaColor.LightCyan VgaColor.Black
  end.
End Style.

Module VgaConsole.
(* console_vga/src/lib.rs:42-44 VGA_WIDTH *)
Definition VGA_WIDTH : nat := 80.
(* console_vga/src/lib.rs:44 VGA_HEIGHT *)
Definition VGA_HEIGHT : nat := 25.
(* console_vga/src/lib.rs:99-103 VgaConsole *)
Record t := mk { buffer : list N }.
#[global] Instance rebuild_t : Rebuild t := λ c, mk (buffer c).

Definition poke (offset : nat) (byte : N) (c : t) : outcome t :=
  if offset <? length (buffer c) then Return (c <| buffer ::= <[offset := byte]> |>) else Panic.
Definition peek (offset : nat) (c : t) : outcome N := expect (buffer c !! offset).
(** A little-endian 16-bit write. *)
Definition poke_cell (offset : nat) (cell : N) (c : t) : outcome t :=
  c ← poke offset (cell mod 256)%N c; poke (offset + 1) (cell / 256)%N c.
Definition cell_of (attr ch : N) : N := N.lor (N.shiftl attr 8) ch.

(* console_vga/src/lib.rs:123-137 VgaConsole::clear_row *)
Definition clear_row (row : nat) (attr : N) (c : t) : outcome t :=
  if VGA_HEIGHT <=? row then Return c
  else
    let offset := row * VGA_WIDTH * 2 in
    fold_outcome (λ c col, poke_cell (offset + col * 2) (cell_of attr 32) c) (seq 0 VGA_WIDTH) c.
(* console_vga/src/lib.rs:116-121 VgaConsole::clear *)
Definition clear (attr : N) (c : t) : outcome t :=
  fold_outcome (λ c row, clear_row row attr c) (seq 0 VGA_HEIGHT) c.
(* console_vga/src/lib.rs:139-162 VgaConsole::write_line_at *)
Definition write_line_at (row : nat) (text : Str.t) (attr : N) (c : t) : outcome t :=
  if VGA_HEIGHT <=? row then Return c
  else
    let offset := row * VGA_WIDTH * 2 in
    let bytes := take VGA_WIDTH (Utf8.as_bytes text) in
    c ← fold_outcome (λ c '(col, byte), poke_cell (offset + col * 2) (cell_of attr byte) c)
          (zip (seq 0 VGA_WIDTH) bytes) c;
    fold_outcome (λ c i, poke_cell (offset + i * 2) (cell_of attr 32) c)
      (seq (length bytes) (VGA_WIDTH - length bytes)) c.
(* console_vga/src/lib.rs:164-177 VgaConsole::blit_from_cells *)
Definition blit_from_cells (cells : list N) (c : t) : outcome t :=
  let total_cells := VGA_WIDTH * VGA_HEIGHT in
  if length cells <? total_cells then Return c
  else
    fold_outcome (λ c '(i, cell), poke_cell (i * 2) cell c) (zip (seq 0 total_cells) (take total_cells cells)) c.
(* console_vga/src/lib.rs:179-193 VgaConsole::write_at *)
Definition write_at (col row : nat) (ch attr : N) (c : t) : outcome (bool * t) :=
  if (VGA_WIDTH <=? col) || (VGA_HEIGHT <=? row) then Return (false, c)
  else
    let offset := (row * VGA_WIDTH + col) * 2 in
    c ← poke offset ch c; c ← poke (offset + 1) attr c; Return (true, c).
(* console_vga/src/lib.rs:195-229 VgaConsole::write_str_at *)
Fixpoint write_bytes_at (col row : nat) (bytes : list N) (attr : N) (written : nat) (c : t) : outcome (nat * t) :=
  match bytes with
  | [] => Return (written, c)
  | byte :: bytes =>
      if (byte =? 10)%N then
        if VGA_HEIGHT <=? row + 1 then Return (written, c) else write_bytes_at 0 (row + 1) bytes attr written c
      else
        let '(col, row) := if VGA_WIDTH <=? col then (0, row + 1) else (col, row) in
        if VGA_HEIGHT <=? row then Return (written, c)
        else
          '(w, c) ← write_at col row byte attr c;
          write_bytes_at (col + 1) row bytes attr (if w : bool then written + 1 else written) c
  end.
Definition write_str_at (col row : nat) (text : Str.t) (attr : N) (c : t) : outcome (nat * t) :=
  write_bytes_at col row (Utf8.as_bytes text) attr 0 c.
(** The halves of an attribute, swapped. *)
Definition inverted (attr : N) : N := N.lor (N.shiftl (N.land attr 0x0F) 4) (N.shiftr (N.land attr 0xF0) 4).
(* console_vga/src/lib.rs:258-277 VgaConsole::draw_cursor *)
Definition draw_cursor (col row : nat) (attr : N) (c : t) : outcome t :=
  if (VGA_WIDTH <=? col) || (VGA_HEIGHT <=? row) then Return c
  else
    let offset := (row * VGA_WIDTH + col) * 2 in
    ch ← peek offset c;
    c ← poke (offset + 1) (inverted attr) c;
    if (ch =? 32)%N then poke offset 95%N c else Return c.
(* console_vga/src/lib.rs:231-256 VgaConsole::present_snapshot *)
Definition present_snapshot (text : Str.t) (cursor_col cursor_row : option nat) (style : Style.t) (c : t) : outcome t :=
  let attr := Style.to_vga_attr style in
  c ← clear attr c;
  c ← fold_outcome (λ c '(row, line), '(_, c) ← write_str_at 0 row line attr c; Return c)
        (zip (seq 0 VGA_HEIGHT) (Str.lines text)) c;
  match cursor_col, cursor_row with
  | Some col, Some row => draw_cursor col row attr c
  | _, _ => Return c
  end.
(* console_vga/src/lib.rs:279-306 VgaConsole::scroll_up *)
Definition scroll_up (lines : nat) (attr : N) (c : t) : outcome t :=
  if lines =? 0 then Return c
  else if VGA_HEIGHT <=? lines then clear attr c
  else
    let row_bytes := VGA_WIDTH * 2 in
    let total_bytes := VGA_HEIGHT * row_bytes in
    let offset := lines * row_bytes in
    if total_bytes <=? length (buffer c) then
      let moved := take (total_bytes - offset) (drop offset (buffer c)) in
      fold_outcome (λ c row, clear_row row attr c) (seq (VGA_HEIGHT - lines) lines)
        (c <| buffer ::= λ b, moved ++ drop (total_bytes - offset) b |>)
    else Panic.
(* console_vga/src/lib.rs:308-335 VgaConsole::render_scrollback *)
Definition render_scrollback (b : VgaScrollback.t) (c : t) : outcome t :=
  visible ← VgaScrollback.visible_lines b;
  c ← clear (default (Style.to_vga_attr Style.Normal) (head visible ≫= λ l, head (VgaLine.attrs l))) c;
  fold_outcome (λ c '(row, line),
      fold_outcome (λ c '(col, (ch, attr)), '(_, c) ← write_at col row ch attr c; Return c)
        (zip (seq 0 VGA_WIDTH) (zip (VgaLine.text line) (VgaLine.attrs line))) c)
    (zip (seq 0 VGA_HEIGHT) visible) c.
(** [a..=b] as a list. *)
Definition inclusive (a b : nat) : list nat := seq a (S b - a).
(* console_vga/src/lib.rs:337-366 VgaConsole::highlight_selection *)
Definition highlight_selection (s : SelectionRange.t) (c : t) : outcome t :=
  let '((start_col, start_row), (end_col, end_row)) := SelectionRange.normalized s in
  fold_outcome (λ c row,
      let col_start := if row =? start_row then start_col else 0 in
      let col_end := if row =? end_row then Nat.min end_col (VGA_WIDTH - 1) else VGA_WIDTH - 1 in
      fold_outcome (λ c col,
          let offset := (row * VGA_WIDTH + col) * 2 in
          attr ← peek (offset + 1) c; poke (offset + 1) (inverted attr) c)
        (inclusive col_start col_end) c)
    (filter (λ row, row < VGA_HEIGHT) (inclusive start_row end_row)) c.
End VgaConsole.

(** ** Properties *)

#[local] Arguments Nat.ltb : simpl never.
#[local] Arguments Nat.leb : simpl never.

Module VgaProps.
Import VgaConsole.

Definition ok (c : t) : Prop := length (buffer c) = VGA_HEIGHT * VGA_WIDTH * 2.
(** The character and the attribute of a place on the screen. *)
Definition char_at (col row : nat) (c : t) : option N := buffer c !! ((row * VGA_WIDTH + col) * 2).
Definition attr_at (col row : nat) (c : t) : option N := buffer c !! ((row * VGA_WIDTH + col) * 2 + 1).

(** Bytes: what a buffer looks like through its lookups. *)
Lemma poke_spec i b c :
  i < length (buffer c) → ∃ c', poke i b c = Return c' ∧ length (buffer c') = length (buffer c)
    ∧ ∀ j, buffer c' !! j = if decide (i = j) then Some b else buffer c !! j.
Proof.
  intros Hi. unfold poke. rewrite (proj2 (Nat.ltb_lt _ _)) by done. eexists. split; [done|]. simpl.
  split; [apply length_insert|]. intros j. case_decide as E; [subst; by apply list_lookup_insert_eq|].
  by apply list_lookup_insert_ne.
Qed.
Lemma cell_bytes attr ch : (ch < 256)%N → (cell_of attr ch mod 256 = ch ∧ cell_of attr ch / 256 = attr)%N.
Proof.
  intros Hch. assert (cell_of attr ch = attr * 256 + ch)%N as ->.
  { unfold cell_of. assert (N.land (N.shiftl attr 8) ch = 0)%N as E.
    { apply N.bits_inj. intros n. rewrite N.land_spec, N.bits_0.
      destruct (N.lt_ge_cases n 8) as [Hn|Hn]; [by rewrite N.shiftl_spec_low|].
      assert (ch = ch mod 2 ^ 8)%N as -> by (by rewrite N.mod_small).
      by rewrite N.mod_pow2_bits_high, andb_false_r. }
    rewrite <-N.lxor_lor, <-N.add_nocarry_lxor by done. by rewrite N.shiftl_mul_pow2. }
  split; [rewrite N.add_comm, N.Div0.mod_add; by apply N.mod_small|].
  rewrite N.div_add_l by done. rewrite (N.div_small ch) by done. lia.
Qed.
Lemma poke_cell_spec i attr ch c :
  i + 1 < length (buffer c) → (ch < 256)%N → ∃ c', poke_cell i (cell_of attr ch) c = Return c'
    ∧ length (buffer c') = length (buffer c)
    ∧ ∀ j, buffer c' !! j = if decide (j = i) then Some ch else if decide (j = i + 1) then Some attr else buffer c !! j.
Proof.
  intros Hi Hch. unfold poke_cell. destruct (cell_bytes attr ch Hch) as [-> ->].
  destruct (poke_spec i ch c) as (c1 & -> & L1 & E1); [lia|]. cbn [mbind outcome_bind].
  destruct (poke_spec (i + 1) attr c1) as (c2 & -> & L2 & E2); [lia|].
  exists c2. split; [done|]. split; [lia|]. intros j. rewrite E2, E1.
  repeat case_decide; try done; lia.
Qed.
Lemma poke_cell_ok i cell c : ok c → i + 1 < VGA_HEIGHT * VGA_WIDTH * 2 → ∃ c', poke_cell i cell c = Return c' ∧ ok c'.
Proof.
  intros Hc Hi. unfold poke_cell, ok in *. destruct (poke_spec i (cell mod 256)%N c) as (c1 & -> & L1 & _); [lia|].
  cbn [mbind outcome_bind]. destruct (poke_spec (i + 1) (cell / 256)%N c1) as (c2 & -> & L2 & _); [lia|].
  exists c2. split; [done|lia].
Qed.

(** *** Every operation stays inside the buffer *)

Ltac vga := unfold VGA_HEIGHT, VGA_WIDTH in *; lia.
Lemma clear_row_ok row attr c : ok c → ∃ c', clear_row row attr c = Return c' ∧ ok c'.
Proof.
  intros Hc. unfold clear_row. destruct (Nat.leb_spec VGA_HEIGHT row); [by eexists|].
  apply fold_outcome_returns; [done|]. intros s col Hcol%elem_of_seq Hs. apply poke_cell_ok; [done|]. vga.
Qed.
Lemma clear_screen_ok attr c : ok c → ∃ c', clear attr c = Return c' ∧ ok c'.
Proof. intros Hc. apply fold_outcome_returns; [done|]. intros s row _ Hs. by apply clear_row_ok. Qed.
Lemma zip_seq_lt {A} n (l : list A) i x : (i, x) ∈ zip (seq 0 n) l → i < n.
Proof. intros Hi. apply elem_of_zip_l in Hi. apply elem_of_seq in Hi. lia. Qed.
Lemma write_line_ok row text attr c : ok c → ∃ c', write_line_at row text attr c = Return c' ∧ ok c'.
Proof.
  intros Hc. unfold write_line_at. destruct (Nat.leb_spec VGA_HEIGHT row); [by eexists|].
  edestruct (fold_outcome_returns ok (λ c '(col, byte), poke_cell (row * VGA_WIDTH * 2 + col * 2) (cell_of attr byte) c))
    as (c1 & -> & H1); [done| |].
  { intros s [col byte] Hi%zip_seq_lt Hs. apply poke_cell_ok; [done|]. vga. }
  cbn [mbind outcome_bind]. apply fold_outcome_returns; [done|]. intros s col Hcol%elem_of_seq Hs.
  apply poke_cell_ok; [done|]. rewrite length_take in Hcol. vga.
Qed.
Lemma blit_ok cells c : ok c → ∃ c', blit_from_cells cells c = Return c' ∧ ok c'.
Proof.
  intros Hc. unfold blit_from_cells. destruct (Nat.ltb_spec (length cells) (VGA_WIDTH * VGA_HEIGHT)); [by eexists|].
  apply fold_outcome_returns; [done|]. intros s [i cell] Hi%zip_seq_lt Hs. apply poke_cell_ok; [done|]. vga.
Qed.
Lemma write_at_ok col row ch attr c : ok c → ∃ r c', write_at col row ch attr c = Return (r, c') ∧ ok c'.
Proof.
  intros Hc. unfold write_at. destruct (Nat.leb_spec VGA_WIDTH col), (Nat.leb_spec VGA_HEIGHT row); simpl; try by do 2 eexists.
  unfold ok in *. destruct (poke_spec ((row * VGA_WIDTH + col) * 2) ch c) as (c1 & -> & L1 & _); [vga|]. cbn [mbind outcome_bind].
  destruct (poke_spec ((row * VGA_WIDTH + col) * 2 + 1) attr c1) as (c2 & -> & L2 & _); [vga|].
  do 2 eexists. split; [done|]. lia.
Qed.
Lemma write_bytes_ok col row bytes attr n c :
  ok c → ∃ m c', write_bytes_at col row bytes attr n c = Return (m, c') ∧ ok c'.
Proof.
  revert col row n c. induction bytes as [|b bytes IH]; intros col row n c Hc; cbn [write_bytes_at]; [by do 2 eexists|].
  destruct (b =? 10)%N; [destruct (VGA_HEIGHT <=? row + 1); [by do 2 eexists|by apply IH]|].
  destruct (if VGA_WIDTH <=? col then _ else _) as [col' row']. destruct (VGA_HEIGHT <=? row'); [by do 2 eexists|].
  destruct (write_at_ok col' row' b attr c Hc) as (r & c1 & -> & H1). cbn [mbind outcome_bind]. by apply IH.
Qed.
Lemma draw_cursor_ok col row attr c : ok c → ∃ c', draw_cursor col row attr c = Return c' ∧ ok c'.
Proof.
  intros Hc. unfold draw_cursor. destruct (Nat.leb_spec VGA_WIDTH col), (Nat.leb_spec VGA_HEIGHT row); simpl; try by eexists.
  unfold ok in *. unfold peek. destruct (lookup_lt_is_Some_2 (buffer c) ((row * VGA_WIDTH + col) * 2)) as [ch ->]; [vga|].
  cbn [expect mbind outcome_bind].
  destruct (poke_spec ((row * VGA_WIDTH + col) * 2 + 1) (inverted attr) c) as (c1 & -> & L1 & _); [vga|]. cbn [mbind outcome_bind].
  destruct (ch =? 32)%N; [|eexists; split; [done|lia]].
  destruct (poke_spec ((row * VGA_WIDTH + col) * 2) 95%N c1) as (c2 & -> & L2 & _); [vga|]. eexists. split; [done|lia].
Qed.
Lemma snapshot_ok text cc cr style c : ok c → ∃ c', present_snapshot text cc cr style c = Return c' ∧ ok c'.
Proof.
  intros Hc. unfold present_snapshot. destruct (clear_screen_ok (Style.to_vga_attr style) c Hc) as (c1 & -> & H1).
  cbn [mbind outcome_bind].
  edestruct (fold_outcome_returns ok (λ c '(row, line), '(_, c) ← write_str_at 0 row line (Style.to_vga_attr style) c; Return c))
    as (c2 & -> & H2); [exact H1| |].
  { intros s [row line] _ Hs. unfold write_str_at. destruct (write_bytes_ok 0 row (Utf8.as_bytes line)
      (Style.to_vga_attr style) 0 s Hs) as (m & s' & -> & Hs'). by eexists. }
  cbn [mbind outcome_bind]. destruct cc, cr; try by eexists. by apply draw_cursor_ok.
Qed.
Lemma vga_scroll_ok n attr c : ok c → ∃ c', scroll_up n attr c = Return c' ∧ ok c'.
Proof.
  intros Hc. unfold scroll_up. destruct (n =? 0); [by eexists|]. destruct (Nat.leb_spec VGA_HEIGHT n); [by apply clear_screen_ok|].
  unfold ok in Hc. rewrite Hc, (proj2 (Nat.leb_le _ _)) by vga. apply fold_outcome_returns.
  - unfold ok. simpl. rewrite length_app, length_take, !length_drop, Hc. vga.
  - intros s row _ Hs. by apply clear_row_ok.
Qed.
Lemma render_ok b visible c :
  VgaScrollback.visible_lines b = Return visible → ok c → ∃ c', render_scrollback b c = Return c' ∧ ok c'.
Proof.
  intros E Hc. unfold render_scrollback. rewrite E. cbn [mbind outcome_bind].
  edestruct (clear_screen_ok (default (Style.to_vga_attr Style.Normal) (head visible ≫= λ l, head (VgaLine.attrs l))) c Hc)
    as (c1 & E1 & H1). rewrite E1. cbn [mbind outcome_bind].
  apply fold_outcome_returns; [done|]. intros s [row line] _ Hs. apply fold_outcome_returns; [done|].
  intros s1 [col [ch attr]] _ Hs1. destruct (write_at_ok col row ch attr s1 Hs1) as (r & s2 & -> & H2). by eexists.
Qed.
Lemma highlight_ok sel c : ok c → ∃ c', highlight_selection sel c = Return c' ∧ ok c'.
Proof.
  intros Hc. unfold highlight_selection. destruct (SelectionRange.normalized sel) as [[sc sr] [ec er]].
  apply fold_outcome_returns; [done|]. intros s row Hrow Hs. apply list_elem_of_filter in Hrow as [Hrow _].
  apply fold_outcome_returns; [done|]. intros s1 col Hcol Hs1. unfold inclusive in Hcol. apply elem_of_seq in Hcol.
  assert (col < VGA_WIDTH) by (destruct (row =? er), (row =? sr); vga).
  unfold ok, peek in *. destruct (lookup_lt_is_Some_2 (buffer s1) ((row * VGA_WIDTH + col) * 2 + 1)) as [a ->]; [vga|].
  cbn [expect mbind outcome_bind].
  destruct (poke_spec ((row * VGA_WIDTH + col) * 2 + 1) (inverted a) s1) as (c1 & -> & L1 & _); [vga|].
  eexists. split; [done|lia].
Qed.

(** The calls of the console; a scrollback is one whose viewport is inside its lines. *)
Inductive op :=
| Clear (attr : N) | ClearRow (row : nat) (attr : N) | WriteLine (row : nat) (text : Str.t) (attr : N)
| Blit (cells : list N) | Write (col row : nat) (ch attr : N) | WriteStr (col row : nat) (text : Str.t) (attr : N)
| Snapshot (text : Str.t) (cursor_col cursor_row : option nat) (style : Style.t) | Cursor (col row : nat) (attr : N)
| ScrollUp (lines : nat) (attr : N) | Highlight (s : SelectionRange.t)
| Render (b : VgaScrollback.t) (inside : VgaScrollback.viewport_offset b ≤ length (VgaScrollback.lines b)).
Definition exec (c : t) (o : op) : outcome t :=
  match o with
  | Clear attr => clear attr c
  | ClearRow row attr => clear_row row attr c
  | WriteLine row text attr => write_line_at row text attr c
  | Blit cells => blit_from_cells cells c
  | Write col row ch attr => '(_, c) ← write_at col row ch attr c; Return c
  | WriteStr col row text attr => '(_, c) ← write_str_at col row text attr c; Return c
  | Snapshot text cc cr style => present_snapshot text cc cr style c
  | Cursor col row attr => draw_cursor col row attr c
  | ScrollUp lines attr => scroll_up lines attr c
  | Highlight s => highlight_selection s c
  | Render b _ => render_scrollback b c
  end.

(** Whatever is written to the console, at whatever column, row and length, no write leaves the
    80 by 25 cells of the text buffer. *)
Theorem vga_writes_stay_in_buffer ops c :
  length (buffer c) = VGA_HEIGHT * VGA_WIDTH * 2 →
  ∃ c', fold_outcome exec ops c = Return c' ∧ length (buffer c') = VGA_HEIGHT * VGA_WIDTH * 2.
Proof.
  intros Hc. apply (fold_outcome_returns ok); [done|]. intros s o _ Hs. destruct o; cbn [exec].
  - by apply clear_screen_ok.
  - by apply clear_row_ok.
  - by apply write_line_ok.
  - by apply blit_ok.
  - destruct (write_at_ok col row ch attr s Hs) as (r & s' & -> & Hs'). by eexists.
  - destruct (write_bytes_ok col row (Utf8.as_bytes text) attr 0 s Hs) as (m & s' & E & Hs').
    unfold write_str_at. rewrite E. by eexists.
  - by apply snapshot_ok.
  - by apply draw_cursor_ok.
  - by apply vga_scroll_ok.
  - by apply highlight_ok.
  - assert (∃ v, VgaScrollback.visible_lines b = Return v) as [v E]; [|by eapply render_ok].
    unfold VgaScrollback.visible_lines, Scroll.visible. destruct (_ =? 0); [by eexists|].
    rewrite (proj2 (Nat.leb_le _ _) inside). by eexists.
Qed.

(** *** Lines *)

(** Writing consecutive cells of a row. *)
Lemma write_cells_spec row attr bytes : ∀ from c,
  ok c → row < VGA_HEIGHT → from + length bytes ≤ VGA_WIDTH → Forall (λ b, b < 256)%N bytes →
  ∃ c', fold_outcome (λ c '(col, byte), poke_cell (row * VGA_WIDTH * 2 + col * 2) (cell_of attr byte) c)
          (zip (seq from (length bytes)) bytes) c = Return c' ∧ ok c'
    ∧ ∀ col r, col < VGA_WIDTH →
        char_at col r c' = (if decide (r = row ∧ from ≤ col < from + length bytes) then bytes !! (col - from) else char_at col r c)
        ∧ attr_at col r c' = (if decide (r = row ∧ from ≤ col < from + length bytes) then Some attr else attr_at col r c).
Proof.
  induction bytes as [|b bytes IH]; intros from c Hc Hrow Hlen Hb; cbn [length seq zip zip_with fold_outcome].
  { exists c. split; [done|]. split; [done|]. intros col r Hcol. simpl.
    by destruct (decide _) as [[_ ?]|_]; [lia|]. }
  apply Forall_cons in Hb as [Hb Hbs]. simpl in Hlen.
  destruct (poke_cell_spec (row * VGA_WIDTH * 2 + from * 2) attr b c) as (c1 & -> & L1 & E1); [unfold ok in Hc; vga|done|].
  cbn [mbind outcome_bind].
  destruct (IH (S from) c1) as (c2 & -> & H2 & E2); [unfold ok in *; lia|done|lia|done|].
  exists c2. split; [done|]. split; [done|]. intros col r Hcol. destruct (E2 col r Hcol) as [-> ->].
  unfold char_at, attr_at. rewrite !E1.
  destruct (decide (r = row ∧ S from ≤ col < S from + length bytes)) as [[-> Hin]|Hout].
  - rewrite decide_True by lia. rewrite decide_True by lia.
    by replace (col - from) with (S (col - S from)) by lia.
  - destruct (decide (r = row ∧ col = from)) as [[-> ->]|Hne].
    + rewrite !(decide_True (P := row = row ∧ _)) by lia. rewrite decide_True by vga.
      rewrite decide_False, decide_True by vga. by rewrite Nat.sub_diag.
    + rewrite !(decide_False (P := r = row ∧ _)) by lia. rewrite !decide_False by vga. done.
Qed.
Lemma fold_spaces (f : t → nat * N → outcome t) from n c :
  fold_outcome (λ c i, f c (i, 32%N)) (seq from n) c = fold_outcome f (zip (seq from n) (replicate n 32%N)) c.
Proof.
  revert from c. induction n as [|n IH]; intros from c; [done|]. cbn [seq replicate zip zip_with fold_outcome].
  destruct (f c (from, 32%N)); cbn [mbind outcome_bind]; [apply IH|done..].
Qed.
Lemma zip_seq_short {A} from n (l : list A) : length l ≤ n → zip (seq from n) l = zip (seq from (length l)) l.
Proof.
  revert from n. induction l as [|x l IH]; intros from n Hn; [by destruct n|]. simpl in Hn.
  destruct n as [|n]; [lia|]. cbn [seq length zip zip_with]. f_equal. apply IH. lia.
Qed.
Lemma utf8_bytes_range s : Forall Utf8.scalar s → Forall (λ b, b < 256)%N (Utf8.as_bytes s).
Proof.
  intros Hs. apply Forall_bind. eapply Forall_impl; [exact Hs|]. intros c Hc. unfold Utf8.scalar in Hc. unfold compose, Utf8.encode.
  assert (c < 0x110000)%N as Hb by lia.
  assert (∀ n, n mod 64 < 64)%N as Hm by (intros n; by apply N.mod_upper_bound).
  destruct (N.ltb_spec c 0x80); [constructor; [lia|constructor]|].
  destruct (N.ltb_spec c 0x800) as [H1|H1]; [|destruct (N.ltb_spec c 0x10000) as [H2|H2]].
  - assert (c / 64 < 32)%N by (apply N.Div0.div_lt_upper_bound; lia). pose proof (Hm c). repeat constructor; lia.
  - assert (c / 4096 < 16)%N by (apply N.Div0.div_lt_upper_bound; lia).
    pose proof (Hm c). pose proof (Hm (c / 64)%N). repeat constructor; lia.
  - assert (c / 262144 < 8)%N by (apply N.Div0.div_lt_upper_bound; lia).
    pose proof (Hm c). pose proof (Hm (c / 64)%N). pose proof (Hm (c / 4096)%N). repeat constructor; lia.
Qed.

(** A line written to a row shows the first 80 bytes of its text and blanks after them, all with
    the attribute given, and no other row changes. *)
Theorem vga_line_shows_text row text attr c :
  length (buffer c) = VGA_HEIGHT * VGA_WIDTH * 2 → row < VGA_HEIGHT → Forall Utf8.scalar text →
  ∃ c', write_line_at row text attr c = Return c' ∧
    ∀ col r, col < VGA_WIDTH →
      char_at col r c' = (if decide (r = row) then Some (default 32%N (Utf8.as_bytes text !! col)) else char_at col r c)
      ∧ attr_at col r c' = (if decide (r = row) then Some attr else attr_at col r c).
Proof.
  intros Hc Hrow Ht. unfold write_line_at. rewrite (proj2 (Nat.leb_gt _ _)) by done.
  set (bytes := take VGA_WIDTH (Utf8.as_bytes text)).
  assert (length bytes ≤ VGA_WIDTH) as Hlen by (unfold bytes; rewrite length_take; lia).
  assert (∀ col, col < VGA_WIDTH → bytes !! col = Utf8.as_bytes text !! col) as Hby
    by (intros col Hcol; unfold bytes; by apply lookup_take_lt).
  rewrite zip_seq_short by done.
  destruct (write_cells_spec row attr bytes 0 c) as (c1 & -> & H1 & E1); [done|done|lia| |].
  { apply Forall_take. by apply utf8_bytes_range. }
  cbn [mbind outcome_bind].
  rewrite (fold_spaces (λ c '(i, b), poke_cell (row * VGA_WIDTH * 2 + i * 2) (cell_of attr b) c)).
  set (n := VGA_WIDTH - length bytes).
  destruct (write_cells_spec row attr (replicate n 32%N) (length bytes) c1) as (c2 & E & H2 & E2);
    [done|done|rewrite length_replicate; lia|by apply Forall_replicate|].
  rewrite length_replicate in E, E2. rewrite E. exists c2. split; [done|]. intros col r Hcol.
  destruct (E2 col r Hcol) as [-> ->]. destruct (E1 col r Hcol) as [-> ->]. clearbody bytes.
  destruct (decide (r = row)) as [->|Hne]; [|by rewrite !(decide_False (P := r = row ∧ _)) by (by intros [? _])].
  destruct (Nat.lt_ge_cases col (length bytes)) as [Hlt|Hge].
  - rewrite !(decide_False (P := row = row ∧ length bytes ≤ _ < _)) by lia.
    rewrite !decide_True by lia. rewrite Nat.sub_0_r, Hby by done.
    destruct (Utf8.as_bytes text !! col) eqn:Eb; [done|]. exfalso. rewrite <-Hby in Eb by done.
    apply lookup_ge_None in Eb. lia.
  - rewrite !decide_True by (unfold n; lia). rewrite lookup_replicate_2 by (unfold n; lia).
    by rewrite <-Hby, (proj2 (lookup_ge_None _ _)) by lia.
Qed.
End VgaProps.

Module ScrollProps.

(** Keeping the last lines of kept lines and one more is keeping the last of all. *)
Lemma keep_last_app {L} max (l l' : list L) :
  Scroll.keep_last max (Scroll.keep_last max l ++ l') = Scroll.keep_last max (l ++ l').
Proof.
  unfold Scroll.keep_last. rewrite !length_app, length_drop.
  destruct (Nat.le_gt_cases (length l) max).
  - replace (length l - max) with 0 by lia. by rewrite Nat.sub_0_r.
  - replace (length l - (length l - max) + length l' - max) with (length l') by lia.
    replace (length l + length l' - max) with (length l - max + length l') by lia.
    rewrite <-drop_drop. by rewrite (drop_app_le l l') by lia.
Qed.
(** The viewport at the bottom is the last rows. *)
Lemma visible_bottom {L} rows (l : list L) : Scroll.visible rows 0 l = Return (Scroll.keep_last rows l).
Proof.
  unfold Scroll.visible, Scroll.keep_last. destruct (Nat.eqb_spec (length l) 0) as [E|E].
  { apply nil_length_inv in E as ->. done. }
  rewrite (proj2 (Nat.leb_le _ _)), Nat.sub_0_r by lia. by rewrite take_ge by (rewrite length_drop; lia).
Qed.

Section buffer.
Import VgaScrollback.
Lemma push_line_lines s a b all :
  lines b = Scroll.keep_last (max_lines b) all →
  lines (push_line s a b) = Scroll.keep_last (max_lines b) (all ++ [VgaLine.from_text s a (cols b)])
  ∧ max_lines (push_line s a b) = max_lines b ∧ cols (push_line s a b) = cols b
  ∧ viewport_rows (push_line s a b) = viewport_rows b ∧ viewport_offset (push_line s a b) = 0.
Proof. intros E. simpl. rewrite E. split; [apply keep_last_app|done]. Qed.

(** Whatever lines are pushed, the scrollback holds the last [max_lines] of them, cut to its width,
    and the screen shows the last of those, as many as it has rows. *)
Theorem scrollback_shows_last_lines width rows max attr pushed :
  let b := foldl (λ b '(s, a), push_line s a b) (new width rows max attr) pushed in
  let all := (λ '(s, a), VgaLine.from_text s a width) <$> pushed in
  lines b = Scroll.keep_last max all ∧ visible_lines b = Return (Scroll.keep_last rows (Scroll.keep_last max all)).
Proof.
  intros b all.
  assert (lines b = Scroll.keep_last max all ∧ max_lines b = max ∧ cols b = width ∧ viewport_rows b = rows
          ∧ viewport_offset b = 0) as (E & _ & _ & Er & Eo).
  { subst b all. induction pushed as [|[s a] pushed IH] using rev_ind; [done|].
    rewrite foldl_snoc, fmap_app. cbv beta iota. destruct IH as (E & Em & Ec & Er & Eo).
    set (b := foldl _ _ pushed) in *. clearbody b. rewrite <-Em in E.
    destruct (push_line_lines s a b _ E) as (E1 & E2 & E3 & E4 & E5).
    rewrite E2, E3, E4, E5. rewrite Em, Ec in E1. by rewrite Em, Ec, Er. }
  split; [done|]. unfold visible_lines. rewrite E, Er, Eo. apply visible_bottom.
Qed.

(** Scrolling up within what is above, and down again, shows the same. *)
Lemma scroll_up_and_down n b :
  viewport_offset b = 0 → n ≤ max_scroll_up b → (scroll_down n (scroll_up n b).2).2 = b.
Proof.
  intros Ho Hn. unfold scroll_up, scroll_down. rewrite Nat.min_l by done.
  destruct (Nat.ltb_spec 0 (max_scroll_up b)) as [H|H]; simpl; rewrite Ho.
  - destruct b as [ml cs vr ls o]. simpl in *. subst o.
    destruct (Nat.ltb_spec 0 n); simpl; unfold update_field; simpl; f_equal; lia.
  - done.
Qed.
(** Each step up is bounded by the whole distance and not by what is left of it: two lines on a screen
    of one row, and the third step leaves the buffer. *)
Lemma scrolling_up_panics :
  let up b := (scroll_up 1 b).2 in
  let b := push_line (Str.of_string "two") 7 (push_line (Str.of_string "one") 7 (new 80 1 100 7)) in
  (∃ v, visible_lines (up b) = Return v) ∧ visible_lines (up (up b)) = Return [] ∧ visible_lines (up (up (up b))) = Panic.
Proof. vm_compute. split; [by eexists|done]. Qed.
End buffer.

(** A place is selected when it is between the ends, row by row. *)
Lemma selection_is_interval sel col row :
  let before (p q : nat * nat) := p.2 < q.2 ∨ (p.2 = q.2 ∧ p.1 ≤ q.1) in
  SelectionRange.contains col row sel = true ↔
  (before (SelectionRange.start sel) (col, row) ∧ before (col, row) (SelectionRange.finish sel)) ∨
  (before (SelectionRange.finish sel) (col, row) ∧ before (col, row) (SelectionRange.start sel)).
Proof.
  destruct sel as [[sc sr] [ec er]]. unfold SelectionRange.contains, SelectionRange.normalized. simpl.
  destruct (Nat.ltb_spec sr er), (Nat.eqb_spec sr er), (Nat.leb_spec sc ec); simpl; try lia;
    repeat (match goal with
            | |- context [Nat.ltb ?a ?b] => destruct (Nat.ltb_spec a b)
            | |- context [Nat.eqb ?a ?b] => destruct (Nat.eqb_spec a b)
            | |- context [Nat.leb ?a ?b] => destruct (Nat.leb_spec a b)
            end; simpl); split; intros; try done; try lia.
Qed.

(** The two tiles cover the screen: every place of a screen with at least one row is in exactly one
    of them, whatever height was asked for the top. *)
Theorem tiles_partition_screen m px py :
  0 < TileManager.screen_height m → px < TileManager.screen_width m → py < TileManager.screen_height m →
  ∃ top bottom, TileManager.get_tile_bounds TileId.Top m = Return top ∧
    TileManager.get_tile_bounds TileId.Bottom m = Return bottom ∧
    TileBounds.contains px py top = negb (TileBounds.contains px py bottom) ∧
    TileBounds.area top + TileBounds.area bottom = TileManager.screen_width m * TileManager.screen_height m.
Proof.
  intros Hh Hx Hy. unfold TileManager.get_tile_bounds. rewrite (proj2 (Nat.eqb_neq _ _)) by lia.
  do 2 eexists. split; [done|]. split; [done|]. unfold TileBounds.contains, TileBounds.area. simpl.
  set (top := Nat.min _ _). assert (top < TileManager.screen_height m) as Ht by (unfold top; lia). clearbody top.
  rewrite !(proj2 (Nat.leb_le 0 _)), (proj2 (Nat.ltb_lt _ _) Hx) by lia. simpl.
  replace (top + (TileManager.screen_height m - top)) with (TileManager.screen_height m) by lia.
  rewrite (proj2 (Nat.ltb_lt _ _) Hy), andb_true_r. split; [|nia].
  destruct (Nat.ltb_spec py top), (Nat.leb_spec top py); simpl; try done; lia.
Qed.
End ScrollProps.

Module VgaExample.
Import VgaConsole VgaProps ScrollProps.
Definition blank : t := VgaConsole.mk (replicate (VGA_HEIGHT * VGA_WIDTH * 2) 0%N).
Lemma blank_length : length (buffer blank) = VGA_HEIGHT * VGA_WIDTH * 2.
Proof. apply length_replicate. Qed.
Lemma vga_writes_stay_in_buffer_witness :
  ∃ c', fold_outcome exec [WriteStr 79 24 (Str.of_string "over the edge") 7; ScrollUp 3 7; Cursor 200 200 7] blank
        = Return c' ∧ length (buffer c') = VGA_HEIGHT * VGA_WIDTH * 2.
Proof.
  exact (vga_writes_stay_in_buffer
    [WriteStr 79 24 (Str.of_string "over the edge") 7; ScrollUp 3 7; Cursor 200 200 7] blank blank_length).
Defined.
Lemma vga_line_shows_text_witness :
  ∃ c', write_line_at 3 (Str.of_string "hi") 7 blank = Return c' ∧ char_at 1 3 c' = Some 105%N
    ∧ char_at 2 3 c' = Some 32%N.
Proof.
  destruct (vga_line_shows_text 3 (Str.of_string "hi") 7 blank blank_length) as (c' & E & H).
  - unfold VGA_HEIGHT. lia.
  - apply (bool_decide_unpack _). vm_compute. exact I.
  - exists c'. split; [exact E|]. split.
    + destruct (H 1 3) as [-> _]; [unfold VGA_WIDTH; lia|]. reflexivity.
    + destruct (H 2 3) as [-> _]; [unfold VGA_WIDTH; lia|]. reflexivity.
Defined.
Lemma tiles_partition_screen_witness :
  ∃ top bottom, TileManager.get_tile_bounds TileId.Top (TileManager.new 80 25 40) = Return top ∧
    TileManager.get_tile_bounds TileId.Bottom (TileManager.new 80 25 40) = Return bottom ∧
    TileBounds.contains 5 24 top = negb (TileBounds.contains 5 24 bottom) ∧
    TileBounds.area top + TileBounds.area bottom = 80 * 25.
Proof. apply (tiles_partition_screen (TileManager.new 80 25 40) 5 24); simpl; lia. Defined.
End VgaExample.
