(* ===== verification/FbConsole.v ===== *)
(** * The frame-buffer console

    [hal/src/framebuffer.rs], [console_fb/src/{lib,font,styling,combined_view}.rs]: text in cells of 8 by
    16 pixels on a linear frame buffer, the view that shows a command line or an editor on it, and
    the incremental redraw of the editor from a cache of what was drawn.

    The implementor of the trait [Framebuffer] is the pair of its description and its bytes.  The
    counters of the debug build are kept; they are [N] and not [usize], which no session fills.

    The second part shows that the incremental redraw is exact. *)

From S2P Require Import Prelude Editor EditorProps Text Input EditorVi ViEditor VgaConsole.
Open Scope string_scope.
Open Scope list_scope.
Open Scope nat_scope.

(** ** Frame buffers ([hal/src/framebuffer.rs]) *)

Module PixelFormat.
(* hal/src/framebuffer.rs:18-24 PixelFormat *)
Inductive t := Rgb32 | Bgr32.
(* hal/src/framebuffer.rs:27-32 PixelFormat::bytes_per_pixel *)
Definition bytes_per_pixel (f : t) : nat := match f with Rgb32 | Bgr32 => 4 end.
(* hal/src/framebuffer.rs:34-40 PixelFormat::to_bytes *)
Definition to_bytes (r g b : N) (f : t) : list N :=
  match f with Rgb32 => [b; g; r; 0%N] | Bgr32 => [r; g; b; 0%N] end.
End PixelFormat.

Module FramebufferInfo.
(* hal/src/framebuffer.rs:44-54 FramebufferInfo *)
Record t := mk { width : nat; height : nat; stride_pixels : nat; format : PixelFormat.t }.
(* hal/src/framebuffer.rs:57-60 FramebufferInfo::offset *)
Definition offset (x y : nat) (i : t) : nat :=
  y * stride_pixels i * PixelFormat.bytes_per_pixel (format i) + x * PixelFormat.bytes_per_pixel (format i).
(* hal/src/framebuffer.rs:62-65 FramebufferInfo::buffer_size *)
Definition buffer_size (i : t) : nat := height i * stride_pixels i * PixelFormat.bytes_per_pixel (format i).
End FramebufferInfo.

Module Framebuffer.
(* hal/src/framebuffer.rs:72-89 Framebuffer *)
Record t := mk { info : FramebufferInfo.t; buffer : list N }.
#[global] Instance rebuild_t : Rebuild t := λ f, mk (info f) (buffer f).
End Framebuffer.

(** ** The font ([font.rs]) *)

Module Font.
(* console_fb/src/font.rs:6-7 FONT_WIDTH *)
Definition FONT_WIDTH : nat := 8.
(* console_fb/src/font.rs:9-10 FONT_HEIGHT *)
Definition FONT_HEIGHT : nat := 16.
#[local] Open Scope N_scope.
(* console_fb/src/font.rs:31-62 FONT_DATA *)
Definition font_00 : list (list N) := [
  [0; 0; 0; 0; 0; 0; 0; 0; 0; 0; 0; 0; 0; 0; 0; 0];
  [0; 0; 0; 0; 0; 0; 0; 0; 0; 0; 0; 0; 0; 0; 0; 0];
  [0; 0; 0; 0; 0; 0; 0; 0; 0; 0; 0; 0; 0; 0; 0; 0];
  [0; 0; 0; 0; 0; 0; 0; 0; 0; 0; 0; 0; 0; 0; 0; 0];
  [0; 0; 0; 0; 0; 0; 0; 0; 0; 0; 0; 0; 0; 0; 0; 0];
  [0; 0; 0; 0; 0; 0; 0; 0; 0; 0; 0; 0; 0; 0; 0; 0];
  [0; 0; 0; 0; 0; 0; 0; 0; 0; 0; 0; 0; 0; 0; 0; 0];
  [0; 0; 0; 0; 0; 0; 0; 0; 0; 0; 0; 0; 0; 0; 0; 0];
  [0; 0; 0; 0; 0; 0; 0; 0; 0; 0; 0; 0; 0; 0; 0; 0];
  [0; 0; 0; 0; 0; 0; 0; 0; 0; 0; 0; 0; 0; 0; 0; 0];
  [0; 0; 0; 0; 0; 0; 0; 0; 0; 0; 0; 0; 0; 0; 0; 0];
  [0; 0; 0; 0; 0; 0; 0; 0; 0; 0; 0; 0; 0; 0; 0; 0];
  [0; 0; 0; 0; 0; 0; 0; 0; 0; 0; 0; 0; 0; 0; 0; 0];
  [0; 0; 0; 0; 0; 0; 0; 0; 0; 0; 0; 0; 0; 0; 0; 0];
  [0; 0; 0; 0; 0; 0; 0; 0; 0; 0; 0; 0; 0; 0; 0; 0];
  [0; 0; 0; 0; 0; 0; 0; 0; 0; 0; 0; 0; 0; 0; 0; 0];
  [0; 0; 0; 0; 0; 0; 0; 0; 0; 0; 0; 0; 0; 0; 0; 0];
  [0; 0; 0; 0; 0; 0; 0; 0; 0; 0; 0; 0; 0; 0; 0; 0];
  [0; 0; 0; 0; 0; 0; 0; 0; 0; 0; 0; 0; 0; 0; 0; 0];
  [0; 0; 0; 0; 0; 0; 0; 0; 0; 0; 0; 0; 0; 0; 0; 0];
  [0; 0; 0; 0; 0; 0; 0; 0; 0; 0; 0; 0; 0; 0; 0; 0];
  [0; 0; 0; 0; 0; 0; 0; 0; 0; 0; 0; 0; 0; 0; 0; 0];
  [0; 0; 0; 0; 0; 0; 0; 0; 0; 0; 0; 0; 0; 0; 0; 0];
  [0; 0; 0; 0; 0; 0; 0; 0; 0; 0; 0; 0; 0; 0; 0; 0];
  [0; 0; 0; 0; 0; 0; 0; 0; 0; 0; 0; 0; 0; 0; 0; 0];
  [0; 0; 0; 0; 0; 0; 0; 0; 0; 0; 0; 0; 0; 0; 0; 0];
  [0; 0; 0; 0; 0; 0; 0; 0; 0; 0; 0; 0; 0; 0; 0; 0];
  [0; 0; 0; 0; 0; 0; 0; 0; 0; 0; 0; 0; 0; 0; 0; 0];
  [0; 0; 0; 0; 0; 0; 0; 0; 0; 0; 0; 0; 0; 0; 0; 0];
  [0; 0; 0; 0; 0; 0; 0; 0; 0; 0; 0; 0; 0; 0; 0; 0];
  [0; 0; 0; 0; 0; 0; 0; 0; 0; 0; 0; 0; 0; 0; 0; 0];
  [0; 0; 0; 0; 0; 0; 0; 0; 0; 0; 0; 0; 0; 0; 0; 0]
].
(* console_fb/src/font.rs:64-213 FONT_DATA *)
Definition font_20 : list (list N) := [
  [0; 0; 0; 0; 0; 0; 0; 0; 0; 0; 0; 0; 0; 0; 0; 0];
  [0; 0; 0x18; 0x3C; 0x3C; 0x3C; 0x18; 0x18; 0x18; 0; 0x18; 0x18; 0; 0; 0; 0];
  [0; 0x66; 0x66; 0x66; 0x24; 0; 0; 0; 0; 0; 0; 0; 0; 0; 0; 0];
  [0; 0; 0; 0x6C; 0x6C; 0xFE; 0x6C; 0x6C; 0x6C; 0xFE; 0x6C; 0x6C; 0; 0; 0; 0];
  [0x18; 0x18; 0x7C; 0xC6; 0xC2; 0xC0; 0x7C; 0x06; 0x06; 0x86; 0xC6; 0x7C; 0x18; 0x18; 0; 0];
  [0; 0; 0; 0; 0xC2; 0xC6; 0x0C; 0x18; 0x30; 0x60; 0xC6; 0x86; 0; 0; 0; 0];
  [0; 0; 0x38; 0x6C; 0x6C; 0x38; 0x76; 0xDC; 0xCC; 0xCC; 0xCC; 0x76; 0; 0; 0; 0];
  [0; 0x30; 0x30; 0x30; 0x60; 0; 0; 0; 0; 0; 0; 0; 0; 0; 0; 0];
  [0; 0; 0x0C; 0x18; 0x30; 0x30; 0x30; 0x30; 0x30; 0x30; 0x18; 0x0C; 0; 0; 0; 0];
  [0; 0; 0x30; 0x18; 0x0C; 0x0C; 0x0C; 0x0C; 0x0C; 0x0C; 0x18; 0x30; 0; 0; 0; 0];
  [0; 0; 0; 0; 0; 0x66; 0x3C; 0xFF; 0x3C; 0x66; 0; 0; 0; 0; 0; 0];
  [0; 0; 0; 0; 0; 0x18; 0x18; 0x7E; 0x18; 0x18; 0; 0; 0; 0; 0; 0];
  [0; 0; 0; 0; 0; 0; 0; 0; 0; 0x18; 0x18; 0x18; 0x30; 0; 0; 0];
  [0; 0; 0; 0; 0; 0; 0; 0xFE; 0; 0; 0; 0; 0; 0; 0; 0];
  [0; 0; 0; 0; 0; 0; 0; 0; 0; 0; 0x18; 0x18; 0; 0; 0; 0];
  [0; 0; 0; 0; 0x02; 0x06; 0x0C; 0x18; 0x30; 0x60; 0xC0; 0x80; 0; 0; 0; 0];
  [0; 0; 0x7C; 0xC6; 0xC6; 0xCE; 0xD6; 0xD6; 0xD6; 0xE6; 0xC6; 0x7C; 0; 0; 0; 0];
  [0; 0; 0x18; 0x38; 0x78; 0x18; 0x18; 0x18; 0x18; 0x18; 0x18; 0x7E; 0; 0; 0; 0];
  [0; 0; 0x7C; 0xC6; 0x06; 0x0C; 0x18; 0x30; 0x60; 0xC0; 0xC6; 0xFE; 0; 0; 0; 0];
  [0; 0; 0x7C; 0xC6; 0x06; 0x06; 0x3C; 0x06; 0x06; 0x06; 0xC6; 0x7C; 0; 0; 0; 0];
  [0; 0; 0x0C; 0x1C; 0x3C; 0x6C; 0xCC; 0xFE; 0x0C; 0x0C; 0x0C; 0x1E; 0; 0; 0; 0];
  [0; 0; 0xFE; 0xC0; 0xC0; 0xC0; 0xFC; 0x06; 0x06; 0x06; 0xC6; 0x7C; 0; 0; 0; 0];
  [0; 0; 0x38; 0x60; 0xC0; 0xC0; 0xFC; 0xC6; 0xC6; 0xC6; 0xC6; 0x7C; 0; 0; 0; 0];
  [0; 0; 0xFE; 0xC6; 0x06; 0x06; 0x0C; 0x18; 0x30; 0x30; 0x30; 0x30; 0; 0; 0; 0];
  [0; 0; 0x7C; 0xC6; 0xC6; 0xC6; 0x7C; 0xC6; 0xC6; 0xC6; 0xC6; 0x7C; 0; 0; 0; 0];
  [0; 0; 0x7C; 0xC6; 0xC6; 0xC6; 0x7E; 0x06; 0x06; 0x06; 0x0C; 0x78; 0; 0; 0; 0];
  [0; 0; 0; 0; 0x18; 0x18; 0; 0; 0; 0x18; 0x18; 0; 0; 0; 0; 0];
  [0; 0; 0; 0; 0x18; 0x18; 0; 0; 0; 0x18; 0x18; 0x30; 0; 0; 0; 0];
  [0; 0; 0; 0x06; 0x0C; 0x18; 0x30; 0x60; 0x30; 0x18; 0x0C; 0x06; 0; 0; 0; 0];
  [0; 0; 0; 0; 0; 0x7E; 0; 0; 0x7E; 0; 0; 0; 0; 0; 0; 0];
  [0; 0; 0; 0x60; 0x30; 0x18; 0x0C; 0x06; 0x0C; 0x18; 0x30; 0x60; 0; 0; 0; 0];
  [0; 0; 0x7C; 0xC6; 0xC6; 0x0C; 0x18; 0x18; 0x18; 0; 0x18; 0x18; 0; 0; 0; 0]
].
(* console_fb/src/font.rs:215-348 FONT_DATA *)
Definition font_40 : list (list N) := [
  [0; 0; 0x7C; 0xC6; 0xC6; 0xDE; 0xDE; 0xDE; 0xDC; 0xC0; 0xC1; 0x7E; 0; 0; 0; 0];
  [0; 0; 0x10; 0x38; 0x6C; 0xC6; 0xC6; 0xFE; 0xC6; 0xC6; 0xC6; 0xC6; 0; 0; 0; 0];
  [0; 0; 0xFC; 0x66; 0x66; 0x66; 0x7C; 0x66; 0x66; 0x66; 0x66; 0xFC; 0; 0; 0; 0];
  [0; 0; 0x3C; 0x66; 0xC2; 0xC0; 0xC0; 0xC0; 0xC0; 0xC2; 0x66; 0x3C; 0; 0; 0; 0];
  [0; 0; 0xF8; 0x6C; 0x66; 0x66; 0x66; 0x66; 0x66; 0x66; 0x6C; 0xF8; 0; 0; 0; 0];
  [0; 0; 0xFE; 0x66; 0x62; 0x68; 0x78; 0x68; 0x60; 0x62; 0x66; 0xFE; 0; 0; 0; 0];
  [0; 0; 0xFE; 0x66; 0x62; 0x68; 0x78; 0x68; 0x60; 0x60; 0x60; 0xF0; 0; 0; 0; 0];
  [0; 0; 0x3C; 0x66; 0xC2; 0xC0; 0xC0; 0xDE; 0xC6; 0xC6; 0x66; 0x3A; 0; 0; 0; 0];
  [0; 0; 0xC6; 0xC6; 0xC6; 0xC6; 0xFE; 0xC6; 0xC6; 0xC6; 0xC6; 0xC6; 0; 0; 0; 0];
  [0; 0; 0x3C; 0x18; 0x18; 0x18; 0x18; 0x18; 0x18; 0x18; 0x18; 0x3C; 0; 0; 0; 0];
  [0; 0; 0x1E; 0x0C; 0x0C; 0x0C; 0x0C; 0x0C; 0xCC; 0xCC; 0xCC; 0x78; 0; 0; 0; 0];
  [0; 0; 0xE6; 0x66; 0x66; 0x6C; 0x78; 0x78; 0x6C; 0x66; 0x66; 0xE6; 0; 0; 0; 0];
  [0; 0; 0xF0; 0x60; 0x60; 0x60; 0x60; 0x60; 0x60; 0x62; 0x66; 0xFE; 0; 0; 0; 0];
  [0; 0; 0xC6; 0xEE; 0xFE; 0xFE; 0xD6; 0xC6; 0xC6; 0xC6; 0xC6; 0xC6; 0; 0; 0; 0];
  [0; 0; 0xC6; 0xE6; 0xF6; 0xFE; 0xDE; 0xCE; 0xC6; 0xC6; 0xC6; 0xC6; 0; 0; 0; 0];
  [0; 0; 0x7C; 0xC6; 0xC6; 0xC6; 0xC6; 0xC6; 0xC6; 0xC6; 0xC6; 0x7C; 0; 0; 0; 0];
  [0; 0; 0xFC; 0x66; 0x66; 0x66; 0x7C; 0x60; 0x60; 0x60; 0x60; 0xF0; 0; 0; 0; 0];
  [0; 0; 0x7C; 0xC6; 0xC6; 0xC6; 0xC6; 0xC6; 0xC6; 0xD6; 0xDE; 0x7C; 0x0C; 0x0E; 0; 0];
  [0; 0; 0xFC; 0x66; 0x66; 0x66; 0x7C; 0x6C; 0x66; 0x66; 0x66; 0xE6; 0; 0; 0; 0];
  [0; 0; 0x7C; 0xC6; 0xC6; 0x60; 0x38; 0x0C; 0x06; 0xC6; 0xC6; 0x7C; 0; 0; 0; 0];
  [0; 0; 0x7E; 0x7E; 0x5A; 0x18; 0x18; 0x18; 0x18; 0x18; 0x18; 0x3C; 0; 0; 0; 0];
  [0; 0; 0xC6; 0xC6; 0xC6; 0xC6; 0xC6; 0xC6; 0xC6; 0xC6; 0xC6; 0x7C; 0; 0; 0; 0];
  [0; 0; 0xC6; 0xC6; 0xC6; 0xC6; 0xC6; 0xC6; 0xC6; 0x6C; 0x38; 0x10; 0; 0; 0; 0];
  [0; 0; 0xC6; 0xC6; 0xC6; 0xC6; 0xD6; 0xD6; 0xD6; 0xFE; 0xEE; 0x6C; 0; 0; 0; 0];
  [0; 0; 0xC6; 0xC6; 0x6C; 0x7C; 0x38; 0x38; 0x7C; 0x6C; 0xC6; 0xC6; 0; 0; 0; 0];
  [0; 0; 0x66; 0x66; 0x66; 0x66; 0x3C; 0x18; 0x18; 0x18; 0x18; 0x3C; 0; 0; 0; 0];
  [0; 0; 0xFE; 0xC6; 0x86; 0x0C; 0x18; 0x30; 0x60; 0xC2; 0xC6; 0xFE; 0; 0; 0; 0];
  [0; 0; 0x3C; 0x30; 0x30; 0x30; 0x30; 0x30; 0x30; 0x30; 0x30; 0x3C; 0; 0; 0; 0];
  [0; 0; 0; 0x80; 0xC0; 0xE0; 0x70; 0x38; 0x1C; 0x0E; 0x06; 0x02; 0; 0; 0; 0];
  [0; 0; 0x3C; 0x0C; 0x0C; 0x0C; 0x0C; 0x0C; 0x0C; 0x0C; 0x0C; 0x3C; 0; 0; 0; 0];
  [0x10; 0x38; 0x6C; 0xC6; 0; 0; 0; 0; 0; 0; 0; 0; 0; 0; 0; 0];
  [0; 0; 0; 0; 0; 0; 0; 0; 0; 0; 0; 0; 0; 0xFF; 0; 0]
].
(* console_fb/src/font.rs:350-483 FONT_DATA *)
Definition font_60 : list (list N) := [
  [0x30; 0x30; 0x18; 0; 0; 0; 0; 0; 0; 0; 0; 0; 0; 0; 0; 0];
  [0; 0; 0; 0; 0; 0x78; 0x0C; 0x7C; 0xCC; 0xCC; 0xCC; 0x76; 0; 0; 0; 0];
  [0; 0; 0xE0; 0x60; 0x60; 0x78; 0x6C; 0x66; 0x66; 0x66; 0x66; 0x7C; 0; 0; 0; 0];
  [0; 0; 0; 0; 0; 0x7C; 0xC6; 0xC0; 0xC0; 0xC0; 0xC6; 0x7C; 0; 0; 0; 0];
  [0; 0; 0x1C; 0x0C; 0x0C; 0x3C; 0x6C; 0xCC; 0xCC; 0xCC; 0xCC; 0x76; 0; 0; 0; 0];
  [0; 0; 0; 0; 0; 0x7C; 0xC6; 0xFE; 0xC0; 0xC0; 0xC6; 0x7C; 0; 0; 0; 0];
  [0; 0; 0x38; 0x6C; 0x64; 0x60; 0xF0; 0x60; 0x60; 0x60; 0x60; 0xF0; 0; 0; 0; 0];
  [0; 0; 0; 0; 0; 0x76; 0xCC; 0xCC; 0xCC; 0xCC; 0xCC; 0x7C; 0x0C; 0xCC; 0x78; 0];
  [0; 0; 0xE0; 0x60; 0x60; 0x6C; 0x76; 0x66; 0x66; 0x66; 0x66; 0xE6; 0; 0; 0; 0];
  [0; 0; 0x18; 0x18; 0; 0x38; 0x18; 0x18; 0x18; 0x18; 0x18; 0x3C; 0; 0; 0; 0];
  [0; 0; 0x06; 0x06; 0; 0x0E; 0x06; 0x06; 0x06; 0x06; 0x06; 0x06; 0x66; 0x66; 0x3C; 0];
  [0; 0; 0xE0; 0x60; 0x60; 0x66; 0x6C; 0x78; 0x78; 0x6C; 0x66; 0xE6; 0; 0; 0; 0];
  [0; 0; 0x38; 0x18; 0x18; 0x18; 0x18; 0x18; 0x18; 0x18; 0x18; 0x3C; 0; 0; 0; 0];
  [0; 0; 0; 0; 0; 0xEC; 0xFE; 0xD6; 0xD6; 0xD6; 0xD6; 0xC6; 0; 0; 0; 0];
  [0; 0; 0; 0; 0; 0xDC; 0x66; 0x66; 0x66; 0x66; 0x66; 0x66; 0; 0; 0; 0];
  [0; 0; 0; 0; 0; 0x7C; 0xC6; 0xC6; 0xC6; 0xC6; 0xC6; 0x7C; 0; 0; 0; 0];
  [0; 0; 0; 0; 0; 0xDC; 0x66; 0x66; 0x66; 0x66; 0x66; 0x7C; 0x60; 0x60; 0xF0; 0];
  [0; 0; 0; 0; 0; 0x76; 0xCC; 0xCC; 0xCC; 0xCC; 0xCC; 0x7C; 0x0C; 0x0C; 0x1E; 0];
  [0; 0; 0; 0; 0; 0xDC; 0x76; 0x66; 0x60; 0x60; 0x60; 0xF0; 0; 0; 0; 0];
  [0; 0; 0; 0; 0; 0x7C; 0xC6; 0x60; 0x38; 0x0C; 0xC6; 0x7C; 0; 0; 0; 0];
  [0; 0; 0x10; 0x30; 0x30; 0xFC; 0x30; 0x30; 0x30; 0x30; 0x36; 0x1C; 0; 0; 0; 0];
  [0; 0; 0; 0; 0; 0xCC; 0xCC; 0xCC; 0xCC; 0xCC; 0xCC; 0x76; 0; 0; 0; 0];
  [0; 0; 0; 0; 0; 0xC6; 0xC6; 0xC6; 0xC6; 0xC6; 0x6C; 0x38; 0; 0; 0; 0];
  [0; 0; 0; 0; 0; 0xC6; 0xC6; 0xD6; 0xD6; 0xD6; 0xFE; 0x6C; 0; 0; 0; 0];
  [0; 0; 0; 0; 0; 0xC6; 0x6C; 0x38; 0x38; 0x38; 0x6C; 0xC6; 0; 0; 0; 0];
  [0; 0; 0; 0; 0; 0xC6; 0xC6; 0xC6; 0xC6; 0xC6; 0xC6; 0x7E; 0x06; 0x0C; 0xF8; 0];
  [0; 0; 0; 0; 0; 0xFE; 0xCC; 0x18; 0x30; 0x60; 0xC6; 0xFE; 0; 0; 0; 0];
  [0; 0; 0x0E; 0x18; 0x18; 0x18; 0x70; 0x18; 0x18; 0x18; 0x18; 0x0E; 0; 0; 0; 0];
  [0; 0; 0x18; 0x18; 0x18; 0x18; 0; 0x18; 0x18; 0x18; 0x18; 0x18; 0; 0; 0; 0];
  [0; 0; 0x70; 0x18; 0x18; 0x18; 0x0E; 0x18; 0x18; 0x18; 0x18; 0x70; 0; 0; 0; 0];
  [0; 0; 0x76; 0xDC; 0; 0; 0; 0; 0; 0; 0; 0; 0; 0; 0; 0];
  [0; 0; 0; 0; 0x10; 0x38; 0x6C; 0xC6; 0xC6; 0xC6; 0xFE; 0; 0; 0; 0; 0]
].
(* console_fb/src/font.rs:25-29 FONT_DATA *)
Definition FONT_DATA : list (list N) := font_00 ++ font_20 ++ font_40 ++ font_60.
(* console_fb/src/font.rs:12-23 get_char_bitmap *)
Definition get_char_bitmap (ch : N) : list N :=
  match FONT_DATA !! N.to_nat ch with Some g => g | None => default [] (FONT_DATA !! 0x3F%nat) end.
End Font.

(** ** The console ([lib.rs]) *)

Module RenderPerfStats.
(* console_fb/src/lib.rs:39-66 RenderPerfStats *)
Record t := mk {
  frame_start_ticks : option N;
  last_frame_ticks : option N;
  glyph_draws : N;
  pixel_writes : N;
  clear_calls : N;
  text_draw_calls : N;
  cursor_draws : N;
  status_redraws : N;
  allocations : N;
  flushes : N;
  dirty_lines : N;
  dirty_spans : N
}.
#[global] Instance rebuild_t : Rebuild t := λ s,
  mk (frame_start_ticks s) (last_frame_ticks s) (glyph_draws s) (pixel_writes s) (clear_calls s) (text_draw_calls s)
     (cursor_draws s) (status_redraws s) (allocations s) (flushes s) (dirty_lines s) (dirty_spans s).
Definition default : t := mk None None 0 0 0 0 0 0 0 0 0 0.
(* console_fb/src/lib.rs:70-81 RenderPerfStats::reset_frame *)
Definition reset_frame (s : t) : t := mk (frame_start_ticks s) (last_frame_ticks s) 0 0 0 0 0 0 0 0 0 0.
End RenderPerfStats.

Module ConsoleFb.
Import Font.
(** White on black. *)
(* console_fb/src/lib.rs:84-85 FG_COLOR *)
Definition FG_COLOR : N * N * N := (0xFF, 0xFF, 0xFF)%N.
(* console_fb/src/lib.rs:87-88 BG_COLOR *)
Definition BG_COLOR : N * N * N := (0, 0, 0)%N.
(* console_fb/src/lib.rs:90-91 CURSOR_COLOR *)
Definition CURSOR_COLOR : N * N * N := (0xFF, 0xFF, 0xFF)%N.
(* console_fb/src/lib.rs:93-101 ConsoleFb *)
Record t := mk {
  framebuffer : Framebuffer.t;
  cols : nat;
  rows : nat;
  scrollback : option ScrollbackBuffer.t;
  perf : RenderPerfStats.t
}.
#[global] Instance rebuild_t : Rebuild t := λ c, mk (framebuffer c) (cols c) (rows c) (scrollback c) (perf c).
(* console_fb/src/lib.rs:453-458 calculate_text_dimensions *)
Definition calculate_text_dimensions (i : FramebufferInfo.t) : nat * nat :=
  (FramebufferInfo.width i / FONT_WIDTH, FramebufferInfo.height i / FONT_HEIGHT).
(* console_fb/src/lib.rs:104-117 ConsoleFb::new *)
Definition new (f : Framebuffer.t) : t :=
  let '(cols, rows) := calculate_text_dimensions (Framebuffer.info f) in mk f cols rows None RenderPerfStats.default.
(* console_fb/src/lib.rs:119-133 ConsoleFb::with_scrollback *)
Definition with_scrollback (f : Framebuffer.t) (max_lines : nat) : t :=
  let '(cols, rows) := calculate_text_dimensions (Framebuffer.info f) in
  mk f cols rows (Some (ScrollbackBuffer.new cols rows max_lines)) RenderPerfStats.default.
(* console_fb/src/lib.rs:147-151 ConsoleFb::perf_frame_start *)
Definition perf_frame_start (ticks : N) (c : t) : t :=
  c <| perf ::= λ s, s <| RenderPerfStats.frame_start_ticks := Some ticks |> |>.
(* console_fb/src/lib.rs:153-159 ConsoleFb::perf_frame_end *)
Definition perf_frame_end (ticks : N) (c : t) : t :=
  match RenderPerfStats.frame_start_ticks (perf c) with
  | Some start => c <| perf ::= λ s, s <| RenderPerfStats.last_frame_ticks := Some (ticks - start)%N |> |>
  | None => c
  end.
(* console_fb/src/lib.rs:161-165 ConsoleFb::perf_reset_frame *)
Definition perf_reset_frame (c : t) : t := c <| perf ::= RenderPerfStats.reset_frame |>.

(** A pixel, when its four bytes are in the buffer. *)
(* console_fb/src/lib.rs:241-248 ConsoleFb::draw_char_at *)
Definition put_pixel (x y : nat) (color : list N) (c : t) : t :=
  let offset := FramebufferInfo.offset x y (Framebuffer.info (framebuffer c)) in
  let b := Framebuffer.buffer (framebuffer c) in
  if offset + 4 <=? length b
  then c <| framebuffer ::= λ f, f <| Framebuffer.buffer := take offset b ++ color ++ drop (offset + 4) b |> |>
         <| perf ::= λ s, s <| RenderPerfStats.pixel_writes ::= N.succ |> |>
  else c.
Definition color_bytes (rgb : N * N * N) (c : t) : list N :=
  PixelFormat.to_bytes rgb.1.1 rgb.1.2 rgb.2 (FramebufferInfo.format (Framebuffer.info (framebuffer c))).
Definition width (c : t) : nat := FramebufferInfo.width (Framebuffer.info (framebuffer c)).
Definition height (c : t) : nat := FramebufferInfo.height (Framebuffer.info (framebuffer c)).
(* console_fb/src/lib.rs:177-201 ConsoleFb::clear *)
Definition clear (c : t) : t :=
  let bg := color_bytes BG_COLOR c in
  let c := c <| perf ::= λ s, s <| RenderPerfStats.clear_calls ::= N.succ |> |> in
  foldl (λ c y, foldl (λ c x, put_pixel x y bg c) c (seq 0 (width c))) c (seq 0 (height c)).
(** A block of pixels of a cell; both loops break at the edge of the screen. *)
Definition draw_block (col row : nat) (ys : list nat) (color : nat → nat → list N) (c : t) : t :=
  foldl (λ c j,
      let y := row * FONT_HEIGHT + j in
      if height c <=? y then c
      else foldl (λ c i, let x := col * FONT_WIDTH + i in if width c <=? x then c else put_pixel x y (color i j) c)
             c (seq 0 FONT_WIDTH)) c ys.
(* console_fb/src/lib.rs:203-253 ConsoleFb::draw_char_at *)
Definition draw_char_at (col row : nat) (ch : N) (c : t) : bool * t :=
  if (cols c <=? col) || (rows c <=? row) then (false, c)
  else
    let c := c <| perf ::= λ s, s <| RenderPerfStats.glyph_draws ::= N.succ |> |> in
    let bitmap := get_char_bitmap ch in
    let fg := color_bytes FG_COLOR c in
    let bg := color_bytes BG_COLOR c in
    (true, draw_block col row (seq 0 (length bitmap))
             (λ i j, if N.testbit (default 0%N (bitmap !! j)) (N.of_nat (7 - i)) then fg else bg) c).
(* console_fb/src/lib.rs:264-292 ConsoleFb::draw_text_at *)
Fixpoint draw_bytes_at (col row : nat) (bytes : list N) (drawn : nat) (c : t) : nat * t :=
  match bytes with
  | [] => (drawn, c)
  | byte :: bytes =>
      if (byte =? 10)%N then
        if rows c <=? row + 1 then (drawn, c) else draw_bytes_at 0 (row + 1) bytes drawn c
      else
        let '(col, row) := if cols c <=? col then (0, row + 1) else (col, row) in
        if rows c <=? row then (drawn, c)
        else
          let '(ok, c) := draw_char_at col row byte c in
          draw_bytes_at (col + 1) row bytes (if ok : bool then drawn + 1 else drawn) c
  end.
(* console_fb/src/lib.rs:255-293 ConsoleFb::draw_text_at *)
Definition draw_text_at (col row : nat) (text : Str.t) (c : t) : nat * t :=
  draw_bytes_at col row (Utf8.as_bytes text) 0 (c <| perf ::= λ s, s <| RenderPerfStats.text_draw_calls ::= N.succ |> |>).
(* console_fb/src/lib.rs:295-338 ConsoleFb::draw_cursor *)
Definition draw_cursor (col row : nat) (c : t) : t :=
  if (cols c <=? col) || (rows c <=? row) then c
  else
    let c := c <| perf ::= λ s, s <| RenderPerfStats.cursor_draws ::= N.succ |> |> in
    let bytes := color_bytes CURSOR_COLOR c in
    draw_block col row (seq (FONT_HEIGHT - 2) 2) (λ _ _, bytes) c.
(** Lines from the top, as many as there are rows, and a cursor. *)
Definition draw_lines (lines : list Str.t) (c : t) : t :=
  foldl (λ c '(row, line), (draw_text_at 0 row line c).2) c (zip (seq 0 (rows c)) lines).
Definition draw_cursor_if (cursor_col cursor_row : option nat) (c : t) : t :=
  match cursor_col, cursor_row with Some col, Some row => draw_cursor col row c | _, _ => c end.
(* console_fb/src/lib.rs:340-363 ConsoleFb::present_snapshot *)
Definition present_snapshot (text : Str.t) (cursor_col cursor_row : option nat) (c : t) : t :=
  draw_cursor_if cursor_col cursor_row (draw_lines (Str.lines text) (clear c)).
(* console_fb/src/lib.rs:365-399 ConsoleFb::present_from_scrollback *)
Definition present_from_scrollback (cursor_col cursor_row : option nat) (c : t) : outcome t :=
  match scrollback c with
  | None => Return c
  | Some b =>
      visible ← ScrollbackBuffer.visible_lines b;
      Return (draw_cursor_if cursor_col cursor_row (draw_lines (Line.as_str <$> visible) (clear c)))
  end.
(* console_fb/src/lib.rs:401-408 ConsoleFb::append_to_scrollback *)
Definition append_to_scrollback (text : Str.t) (c : t) : t :=
  c <| scrollback ::= fmap (ScrollbackBuffer.push_text text) |>.
(** A call of the scrollback that tells whether it scrolled. *)
Definition on_scrollback (f : ScrollbackBuffer.t → bool * ScrollbackBuffer.t) (c : t) : bool * t :=
  match scrollback c with
  | Some b => let '(r, b) := f b in (r, c <| scrollback := Some b |>)
  | None => (false, c)
  end.
(* console_fb/src/lib.rs:410-417 ConsoleFb::scroll_up *)
Definition scroll_up (n : nat) : t → bool * t := on_scrollback (ScrollbackBuffer.scroll_up n).
(* console_fb/src/lib.rs:419-426 ConsoleFb::scroll_down *)
Definition scroll_down (n : nat) : t → bool * t := on_scrollback (ScrollbackBuffer.scroll_down n).
(* console_fb/src/lib.rs:428-433 ConsoleFb::scroll_to_bottom *)
Definition scroll_to_bottom (c : t) : t := c <| scrollback ::= fmap ScrollbackBuffer.scroll_to_bottom |>.
(* console_fb/src/lib.rs:435-440 ConsoleFb::scroll_to_top *)
Definition scroll_to_top (c : t) : t := c <| scrollback ::= fmap ScrollbackBuffer.scroll_to_top |>.
End ConsoleFb.

(** ** Styles, banners and frames ([styling.rs]) *)

Module StyledText.
(* console_fb/src/styling.rs:13-26 Style *)
Inductive style := Normal | Bold | Error | Success | Info.
(* console_fb/src/styling.rs:28-41 StyledText *)
Record t := new { text : Str.t; how : style }.
(* console_fb/src/styling.rs:68-77 StyledText::to_marked *)
Definition to_marked (s : t) : Str.t :=
  match how s with
  | Normal => text s
  | Bold => str "**" ++ text s ++ str "**"
  | Error => str "[ERROR] " ++ text s
  | Success => str "[OK] " ++ text s
  | Info => str "[INFO] " ++ text s
  end.
End StyledText.

Module RedrawManager.
(* console_fb/src/styling.rs:143-147 RedrawManager *)
Record t := mk { last_frame : list Str.t; dirty : bool }.
#[global] Instance rebuild_t : Rebuild t := λ m, mk (last_frame m) (dirty m).
(* console_fb/src/styling.rs:150-155 RedrawManager::new *)
Definition new : t := mk [] true.
(* console_fb/src/styling.rs:157-174 RedrawManager::has_changed *)
Definition has_changed (frame : list Str.t) (m : t) : bool :=
  if dirty m then true
  else if negb (length (last_frame m) =? length frame) then true
  else existsb (λ p, negb (bool_decide (p.1 = p.2))) (zip (last_frame m) frame).
(* console_fb/src/styling.rs:176-180 RedrawManager::update *)
Definition update (frame : list Str.t) (m : t) : t := mk frame false.
(* console_fb/src/styling.rs:182-185 RedrawManager::mark_dirty *)
Definition mark_dirty (m : t) : t := m <| dirty := true |>.
End RedrawManager.

(** ** The combined view ([combined_view.rs]) *)

Module ViewMode.
(* console_fb/src/combined_view.rs:17-24 ViewMode *)
Inductive t := Cli | Editor.
End ViewMode.

Module EditorRenderCache.
(* console_fb/src/combined_view.rs:40-48 EditorRenderCache *)
Record t := mk {
  lines : list Str.t;
  status : Str.t;
  cursor : option (nat * nat);
  cols : nat;
  rows : nat;
  valid : bool
}.
#[global] Instance rebuild_t : Rebuild t := λ c, mk (lines c) (status c) (cursor c) (cols c) (rows c) (valid c).
Definition default : t := mk [] [] None 0 0 false.
(* console_fb/src/combined_view.rs:67-74 EditorRenderCache::invalidate *)
Definition invalidate (c : t) : t := mk [] [] None (cols c) (rows c) false.
End EditorRenderCache.

Module LineUpdate.
(* console_fb/src/combined_view.rs:50-56 LineUpdate *)
Record t := mk { row : nat; start_col : nat; text : Str.t; clear_from : option nat }.
End LineUpdate.

Import Vi.

(* console_fb/src/combined_view.rs:76-86 build_editor_lines *)
Definition build_editor_lines (s : EditorState.t) (rows : nat) : list Str.t :=
  (λ row, default (str "~") (TextBuffer.line row (EditorState.buffer s))) <$> seq 0 rows.
(** The byte at an index, a blank beyond the end. *)
(* console_fb/src/combined_view.rs:139-141 cursor_cell_byte *)
Definition cursor_cell_byte (line : Str.t) (col : nat) : N := default 32%N (Utf8.as_bytes line !! col).
(** [s[a..b]], which panics when an index is not between characters. *)
Definition slice (a b : nat) (s : Str.t) : outcome Str.t :=
  '(front, _) ← expect (Str.split_at b s); '(_, back) ← expect (Str.split_at a front); Return back.
(** Whether two lines show different bytes at an index. *)
(* console_fb/src/combined_view.rs:99-101 diff_line_update *)
Definition differs (old new : Str.t) (idx : nat) : bool :=
  negb (cursor_cell_byte old idx =? cursor_cell_byte new idx)%N.
(* console_fb/src/combined_view.rs:88-137 diff_line_update *)
Definition diff_line_update (old new : Str.t) (cols row : nat) : outcome (option LineUpdate.t) :=
  if bool_decide (old = new) then Return None
  else
    let max_len := Nat.min (Nat.max (Str.len old) (Str.len new)) cols in
    match filter (λ idx, differs old new idx = true) (seq 0 max_len) with
    | [] => Return None
    | start :: _ =>
        let last := default start (last (filter (λ idx, differs old new idx = true) (seq start (max_len - start)))) in
        let new_end := Nat.min (last + 1) (Str.len new) in
        text ← (if start <? new_end then slice start new_end new else Return []);
        let clear_from := if Str.len new <? Str.len old then Some (Nat.min (Str.len new) cols) else None in
        Return (Some (LineUpdate.mk row start text clear_from))
    end.
(* console_fb/src/combined_view.rs:143-155 perf_overlay_text *)
Definition perf_overlay_text (s : RenderPerfStats.t) : Str.t :=
  str (" | t:" +:+ pretty (default 0%N (RenderPerfStats.last_frame_ticks s)) +:+ " draws:" +:+ pretty (RenderPerfStats.glyph_draws s)
       +:+ " flush:" +:+ pretty (RenderPerfStats.flushes s) +:+ " dirty:" +:+ pretty (RenderPerfStats.dirty_lines s)
       +:+ ":" +:+ pretty (RenderPerfStats.dirty_spans s) +:+ ", px:" +:+ pretty (RenderPerfStats.pixel_writes s)).

Module CombinedView.
(* console_fb/src/combined_view.rs:26-38 CombinedView *)
Record t := mk {
  console : ConsoleFb.t;
  editor_view : EditorView.t;
  mode : ViewMode.t;
  reserved_lines : nat;
  editor_cache : EditorRenderCache.t;
  perf_overlay_enabled : bool
}.
#[global] Instance rebuild_t : Rebuild t := λ v,
  mk (console v) (editor_view v) (mode v) (reserved_lines v) (editor_cache v) (perf_overlay_enabled v).
(* console_fb/src/combined_view.rs:158-175 CombinedView::new *)
Definition new (c : ConsoleFb.t) (reserved_lines : nat) : t :=
  mk c (EditorView.new (ConsoleFb.rows c - reserved_lines)) ViewMode.Cli reserved_lines EditorRenderCache.default false.
(* console_fb/src/combined_view.rs:182-185 CombinedView::switch_to_cli *)
Definition switch_to_cli (v : t) : t := v <| mode := ViewMode.Cli |>.
(* console_fb/src/combined_view.rs:187-190 CombinedView::switch_to_editor *)
Definition switch_to_editor (v : t) : t := v <| mode := ViewMode.Editor |>.
(* console_fb/src/combined_view.rs:192-195 CombinedView::set_perf_overlay_enabled *)
Definition set_perf_overlay_enabled (b : bool) (v : t) : t := v <| perf_overlay_enabled := b |>.
(* console_fb/src/combined_view.rs:465-468 CombinedView::content_lines *)
Definition content_lines (v : t) : nat := ConsoleFb.rows (console v) - reserved_lines v.
(* console_fb/src/combined_view.rs:218-228 CombinedView::render_cli *)
Definition scrollback_lines (c : ConsoleFb.t) : outcome (list Str.t) :=
  match ConsoleFb.scrollback c with
  | Some b => lines ← ScrollbackBuffer.visible_lines b; Return (map Line.as_str lines)
  | None => Return []
  end.
(* console_fb/src/combined_view.rs:212-247 CombinedView::render_cli *)
Definition render_cli (prompt input : Str.t) (cursor_col : nat) (v : t) : outcome t :=
  let c := ConsoleFb.clear (console v) in
  visible ← scrollback_lines c;
  if ConsoleFb.rows c <? reserved_lines v then Panic
  else
    let output_lines := ConsoleFb.rows c - reserved_lines v in
    let c := foldl (λ c '(row, line), (ConsoleFb.draw_text_at 0 row line c).2) c (zip (seq 0 output_lines) visible) in
    if ConsoleFb.rows c =? 0 then Panic
    else
      let prompt_row := ConsoleFb.rows c - 1 in
      let c := (ConsoleFb.draw_text_at 0 prompt_row (prompt ++ input) c).2 in
      Return (v <| console := ConsoleFb.draw_cursor (Str.len prompt + cursor_col) prompt_row c |>).

(** The status line, with the counters when they are shown. *)
(* console_fb/src/combined_view.rs:344-354 CombinedView::render_editor_with_ticks *)
Definition status_line (s : EditorState.t) (overlay : bool) (c : ConsoleFb.t) : Str.t :=
  EditorView.render_status s ++ (if overlay then perf_overlay_text (ConsoleFb.perf c) else []).
(** The position of the cursor, when it is among the rows shown. *)
(* console_fb/src/combined_view.rs:359-364 CombinedView::render_editor_with_ticks *)
Definition cursor_target (s : EditorState.t) (content_rows : nat) : option (nat * nat) :=
  let p := Cursor.position (EditorState.cursor s) in
  if Position.row p <? content_rows then Some (Position.col p, Position.row p) else None.
Definition draw_cursor_at (at_ : option (nat * nat)) (c : ConsoleFb.t) : ConsoleFb.t :=
  match at_ with Some (col, row) => ConsoleFb.draw_cursor col row c | None => c end.
Definition finish (ticks : option N) (c : ConsoleFb.t) : ConsoleFb.t :=
  match ticks with Some e => ConsoleFb.perf_frame_end e c | None => c end.
(* console_fb/src/combined_view.rs:275-322 CombinedView::render_editor_with_ticks *)
Definition redraw_all (s : EditorState.t) (end_ticks : option N) (v : t) : t :=
  let c := ConsoleFb.clear (console v) in
  let cols := ConsoleFb.cols c in
  let rows := ConsoleFb.rows c in
  let content_rows := rows - reserved_lines v in
  let lines := build_editor_lines s content_rows in
  let c := foldl (λ c '(row, line), (ConsoleFb.draw_text_at 0 row line c).2) c (zip (seq 0 content_rows) lines) in
  let status := status_line s (perf_overlay_enabled v) c in
  let c := (ConsoleFb.draw_text_at 0 (rows - 1) status c).2 in
  let target := cursor_target s content_rows in
  let c := draw_cursor_at target c in
  v <| console := finish end_ticks c |>
    <| editor_cache := EditorRenderCache.mk lines status target cols rows true |>.
(** One line of the plan. *)
(* console_fb/src/combined_view.rs:376-389 CombinedView::render_editor_with_ticks *)
Definition apply_update (c : ConsoleFb.t) (u : LineUpdate.t) : ConsoleFb.t :=
  let c := match LineUpdate.text u with
           | [] => c
           | text => (ConsoleFb.draw_text_at (LineUpdate.start_col u) (LineUpdate.row u) text c).2
           end in
  match LineUpdate.clear_from u with
  | Some from =>
      let cols := ConsoleFb.cols c in
      let from := Nat.min from cols in
      foldl (λ c col, (ConsoleFb.draw_char_at col (LineUpdate.row u) 32%N c).2) c (seq from (cols - from))
  | None => c
  end.
(* console_fb/src/combined_view.rs:330-342 CombinedView::render_editor_with_ticks *)
Definition plan_lines (old new : list Str.t) (cols content_rows : nat) : outcome (list LineUpdate.t) :=
  fold_outcome (λ plan row,
      u ← diff_line_update (default [] (old !! row)) (default (str "~") (new !! row)) cols row;
      Return (plan ++ option_list u))
    (seq 0 content_rows) [].
(** The plan never asks for a full redraw. *)
(* console_fb/src/combined_view.rs:324-438 CombinedView::render_editor_with_ticks *)
Definition redraw_changes (s : EditorState.t) (end_ticks : option N) (v : t) : outcome t :=
  let c := console v in
  let cols := ConsoleFb.cols c in
  let rows := ConsoleFb.rows c in
  let content_rows := rows - reserved_lines v in
  let cache := editor_cache v in
  let new_lines := build_editor_lines s content_rows in
  let c := c <| ConsoleFb.perf ::= λ p, p <| RenderPerfStats.allocations ::= N.add (len new_lines) |> |> in
  updates ← plan_lines (EditorRenderCache.lines cache) new_lines cols content_rows;
  let status := status_line s (perf_overlay_enabled v) c in
  let target := cursor_target s content_rows in
  let moved := negb (bool_decide (EditorRenderCache.cursor cache = target)) in
  let c := foldl apply_update c updates in
  let c := c <| ConsoleFb.perf ::= λ p, p <| RenderPerfStats.dirty_lines ::= N.add (len updates) |>
                                          <| RenderPerfStats.dirty_spans ::= N.add (len updates) |> |> in
  let c := if perf_overlay_enabled v || negb (bool_decide (status = EditorRenderCache.status cache))
           then (ConsoleFb.draw_text_at 0 (rows - 1) status c).2
                <| ConsoleFb.perf ::= λ p, p <| RenderPerfStats.status_redraws ::= N.succ |> |>
           else c in
  let c := match (if moved then EditorRenderCache.cursor cache else None) with
           | Some (old_col, old_row) =>
               if old_row <? content_rows
               then (ConsoleFb.draw_char_at old_col old_row
                       (cursor_cell_byte (default (str "~") (new_lines !! old_row)) old_col) c).2
               else c
           | None => c
           end in
  let c := if moved then draw_cursor_at target c else c in
  Return (v <| console := finish end_ticks c |>
            <| editor_cache := EditorRenderCache.mk new_lines status target cols rows true |>).
(* console_fb/src/combined_view.rs:256-438 CombinedView::render_editor_with_ticks *)
Definition render_editor_with_ticks (s : EditorState.t) (start_ticks end_ticks : option N) (v : t) : outcome t :=
  let c := ConsoleFb.perf_reset_frame (console v) in
  let c := match start_ticks with Some e => ConsoleFb.perf_frame_start e c | None => c end in
  let v := v <| console := c |> in
  let cache := editor_cache v in
  if negb (EditorRenderCache.valid cache) || negb (EditorRenderCache.cols cache =? ConsoleFb.cols c)
     || negb (EditorRenderCache.rows cache =? ConsoleFb.rows c)
  then Return (redraw_all s end_ticks v)
  else redraw_changes s end_ticks v.
(* console_fb/src/combined_view.rs:249-254 CombinedView::render_editor *)
Definition render_editor (s : EditorState.t) (v : t) : outcome t := render_editor_with_ticks s None None v.
(* console_fb/src/combined_view.rs:440-463 CombinedView::render *)
Definition render (prompt input : Str.t) (cli_cursor : nat) (s : option EditorState.t) (v : t) : outcome t :=
  match mode v, s with
  | ViewMode.Editor, Some s => render_editor s v
  | _, _ => render_cli prompt input cli_cursor v
  end.
End CombinedView.

(** * Properties of the frame-buffer console

    Cells: a character, or the cursor, changes the pixels of its cell and no other.  So the screen is
    a grid of cells, drawing is writing into the grid, and the incremental redraw of the editor leaves
    the pixels that a redraw of everything leaves. *)

Open Scope string_scope.
Open Scope list_scope.
Open Scope nat_scope.
#[local] Arguments Nat.ltb : simpl never.
#[local] Arguments Nat.leb : simpl never.

Module FbSpec.
Import Font ConsoleFb.

(** ** Pixels *)

Definition fb_info (c : t) : FramebufferInfo.t := Framebuffer.info (framebuffer c).
Definition bytes (c : t) : list N := Framebuffer.buffer (framebuffer c).
(** The bytes of a pixel. *)
Definition px (x y : nat) (c : t) : list N := take 4 (drop (FramebufferInfo.offset x y (fb_info c)) (bytes c)).
Record fb_ok (c : t) : Prop := {
  fo_stride : width c ≤ FramebufferInfo.stride_pixels (fb_info c);
  fo_buffer : FramebufferInfo.buffer_size (fb_info c) ≤ length (bytes c);
  fo_cols : cols c * FONT_WIDTH ≤ width c;
  fo_rows : rows c * FONT_HEIGHT ≤ height c
}.
(** What drawing keeps. *)
Record kept (c c' : t) : Prop := {
  ke_info : fb_info c' = fb_info c;
  ke_bytes : length (bytes c') = length (bytes c);
  ke_cols : cols c' = cols c;
  ke_rows : rows c' = rows c;
  ke_scroll : scrollback c' = scrollback c
}.
#[global] Instance kept_refl : Reflexive kept.
Proof. by split. Qed.
#[global] Instance kept_trans : Transitive kept.
Proof. intros c1 c2 c3 [] []. split; congruence. Qed.
Lemma kept_size c c' : kept c c' → width c' = width c ∧ height c' = height c.
Proof. intros [E _ _ _ _]. unfold width, height. unfold fb_info in E. by rewrite E. Qed.
Lemma kept_ok c c' : kept c c' → fb_ok c → fb_ok c'.
Proof.
  intros Hk [H1 H2 H3 H4]. destruct (kept_size _ _ Hk) as [Ew Eh]. destruct Hk as [E1 E2 E3 E4 _].
  split; rewrite ?Ew, ?Eh, ?E1, ?E2, ?E3, ?E4; done.
Qed.
(** Counters are not pixels. *)
Lemma kept_perf f c : kept c (c <| perf ::= f |>) ∧ ∀ x y, px x y (c <| perf ::= f |>) = px x y c.
Proof. by split. Qed.

Lemma splice_same (o : nat) (col b : list N) :
  length col = 4 → o + 4 ≤ length b → take 4 (drop o (take o b ++ col ++ drop (o + 4) b)) = col.
Proof.
  intros Hc Ho. rewrite drop_app_ge by (rewrite length_take; lia). rewrite length_take, Nat.min_l, Nat.sub_diag by lia.
  rewrite drop_0, take_app_le by lia. by rewrite take_ge by lia.
Qed.
Lemma splice_other (o o' : nat) (col b : list N) :
  length col = 4 → o + 4 ≤ length b → o' + 4 ≤ o ∨ o + 4 ≤ o' →
  take 4 (drop o' (take o b ++ col ++ drop (o + 4) b)) = take 4 (drop o' b).
Proof.
  intros Hc Ho [H|H].
  - rewrite drop_app_le by (rewrite length_take; lia). rewrite take_app_le by (rewrite length_drop, length_take; lia).
    rewrite <-(take_drop o b) at 2. rewrite drop_app_le by (rewrite length_take; lia).
    by rewrite take_app_le by (rewrite length_drop, length_take; lia).
  - rewrite drop_app_ge by (rewrite length_take; lia). rewrite length_take, Nat.min_l by lia.
    rewrite drop_app_ge by lia. rewrite drop_drop. do 2 f_equal. lia.
Qed.
Lemma offset_4 x y i : FramebufferInfo.offset x y i = (y * FramebufferInfo.stride_pixels i + x) * 4.
Proof. unfold FramebufferInfo.offset. destruct (FramebufferInfo.format i); simpl; lia. Qed.
Lemma pixel_inside c x y : fb_ok c → x < width c → y < height c → FramebufferInfo.offset x y (fb_info c) + 4 ≤ length (bytes c).
Proof.
  intros [H1 H2 _ _] Hx Hy. rewrite offset_4. unfold FramebufferInfo.buffer_size in H2. unfold width, height in *. fold (fb_info c) in *.
  destruct (FramebufferInfo.format (fb_info c)); simpl in H2; nia.
Qed.
Lemma put_pixel_spec x y color c :
  fb_ok c → x < width c → y < height c → length color = 4 →
  kept c (put_pixel x y color c) ∧
  ∀ x' y', x' < width c → y' < height c →
    px x' y' (put_pixel x y color c) = if (x' =? x) && (y' =? y) then color else px x' y' c.
Proof.
  intros Hc Hx Hy Hl. pose proof (pixel_inside c x y Hc Hx Hy) as Hin. unfold put_pixel.
  fold (fb_info c). fold (bytes c). rewrite (proj2 (Nat.leb_le _ _) Hin). split.
  { split; try done. unfold bytes at 1. simpl. rewrite !length_app, length_take, length_drop. lia. }
  intros x' y' Hx' Hy'. unfold px at 1. unfold fb_info at 1, bytes at 1. simpl. fold (fb_info c).
  destruct (Nat.eqb_spec x' x) as [->|Nx]; simpl.
  - destruct (Nat.eqb_spec y' y) as [->|Ny]; simpl; [by apply splice_same|]. apply splice_other; [done|done|].
    rewrite !offset_4. pose proof (fo_stride _ Hc). unfold width in *. fold (fb_info c) in *. nia.
  - apply splice_other; [done|done|]. rewrite !offset_4. pose proof (fo_stride _ Hc). unfold width in *. fold (fb_info c) in *.
    destruct (Nat.lt_trichotomy y y') as [?|[->|?]]; nia.
Qed.

(** A loop of drawings, each of which paints its region with the one picture [f]. *)
Definition paints (c c' : t) (region : nat → nat → bool) (f : nat → nat → list N) : Prop :=
  kept c c' ∧ ∀ x y, x < width c → y < height c → px x y c' = if region x y then f x y else px x y c.
Lemma paints_none c f : paints c c (λ _ _, false) f.
Proof. by split. Qed.
Lemma paints_ext c c' r r' f f' :
  paints c c' r f → (∀ x y, x < width c → y < height c → r x y = r' x y ∧ (r x y = true → f x y = f' x y)) → paints c c' r' f'.
Proof.
  intros [Hk Hp] He. split; [done|]. intros x y Hx Hy. rewrite Hp by done. destruct (He x y Hx Hy) as [<- Hf].
  destruct (r x y); [by apply Hf|done].
Qed.
Lemma paints_fold {A} (step : t → A → t) (region : A → nat → nat → bool) f l c :
  fb_ok c → (∀ c1 a, a ∈ l → kept c c1 → paints c1 (step c1 a) (region a) f) →
  paints c (foldl step c l) (λ x y, existsb (λ a, region a x y) l) f.
Proof.
  intros Hc. assert (∀ c0, kept c c0 → (∀ c1 a, a ∈ l → kept c c1 → paints c1 (step c1 a) (region a) f) →
    paints c0 (foldl step c0 l) (λ x y, existsb (λ a, region a x y) l) f) as Hgen; [|by apply Hgen].
  induction l as [|a l IH]; intros c0 H0 Hstep; [by split|]. cbn [foldl existsb].
  destruct (Hstep c0 a) as [K1 P1]; [constructor|done|].
  destruct (IH (step c0 a)) as [K2 P2]; [by etrans|intros; apply Hstep; [by constructor|done]|].
  split; [by etrans|]. intros x y Hx Hy. destruct (kept_size _ _ K1) as [Ew Eh].
  rewrite P2, P1 by (rewrite ?Ew, ?Eh; done). by destruct (region a x y), (existsb _ l).
Qed.

(** ** Cells *)

Definition in_cell (col row x y : nat) : bool :=
  (col * FONT_WIDTH <=? x) && (x <? col * FONT_WIDTH + FONT_WIDTH) && (row * FONT_HEIGHT <=? y) && (y <? row * FONT_HEIGHT + FONT_HEIGHT).
Lemma existsb_ext' {A} (f g : A → bool) l : (∀ a, a ∈ l → f a = g a) → existsb f l = existsb g l.
Proof.
  induction l as [|a l IH]; intros H; [done|]. simpl. rewrite (H a) by constructor. f_equal. apply IH.
  intros b Hb. apply H. by constructor.
Qed.
Lemma existsb_seq (n x a : nat) : existsb (λ i, x =? a + i) (seq 0 n) = (a <=? x) && (x <? a + n).
Proof.
  apply eq_true_iff_eq. rewrite existsb_exists, andb_true_iff, Nat.leb_le, Nat.ltb_lt. split.
  - intros (i & Hi & E). apply Nat.eqb_eq in E. apply in_seq in Hi. lia.
  - intros [H1 H2]. exists (x - a). rewrite in_seq, Nat.eqb_eq. lia.
Qed.
Ltac font := unfold FONT_WIDTH, FONT_HEIGHT in *; lia.

Lemma draw_block_paints col row ys color c :
  fb_ok c → col < cols c → row < rows c → (∀ j, j ∈ ys → j < FONT_HEIGHT) → (∀ i j, length (color i j) = 4) →
  paints c (draw_block col row ys color c)
    (λ x y, (col * FONT_WIDTH <=? x) && (x <? col * FONT_WIDTH + FONT_WIDTH) && existsb (λ j, y =? row * FONT_HEIGHT + j) ys)
    (λ x y, color (x - col * FONT_WIDTH) (y - row * FONT_HEIGHT)).
Proof.
  intros Hc Hcol Hrow Hys Hlen. pose proof (fo_cols _ Hc). pose proof (fo_rows _ Hc).
  eapply paints_ext; [apply (paints_fold _ (λ j x y,
      (col * FONT_WIDTH <=? x) && (x <? col * FONT_WIDTH + FONT_WIDTH) && (y =? row * FONT_HEIGHT + j))); [done|]|].
  - intros c1 j Hj Hk. apply Hys in Hj. pose proof (kept_ok _ _ Hk Hc) as Hc1. destruct (kept_size _ _ Hk) as [Ew Eh].
    cbv zeta. rewrite (proj2 (Nat.leb_gt _ _)) by font.
    eapply paints_ext; [apply (paints_fold _ (λ i x y, (x =? col * FONT_WIDTH + i) && (y =? row * FONT_HEIGHT + j))
      (λ x y, color (x - col * FONT_WIDTH) (y - row * FONT_HEIGHT))); [done|]|].
    + intros c2 i Hi Hk2. apply elem_of_seq in Hi. pose proof (kept_ok _ _ Hk2 Hc1) as Hc2.
      destruct (kept_size _ _ Hk2) as [Ew2 Eh2]. rewrite (proj2 (Nat.leb_gt _ _)) by font.
      destruct (put_pixel_spec (col * FONT_WIDTH + i) (row * FONT_HEIGHT + j) (color i j) c2) as [K P]; [done|font|font|done|].
      split; [done|]. intros x y Hx Hy. rewrite P by done.
      destruct (Nat.eqb_spec x (col * FONT_WIDTH + i)) as [->|]; simpl; [|done].
      destruct (Nat.eqb_spec y (row * FONT_HEIGHT + j)) as [->|]; [|done]. f_equal; lia.
    + intros x y _ _. split; [|done]. rewrite <-existsb_seq.
      destruct (y =? _); [rewrite andb_true_r|rewrite andb_false_r].
      * apply existsb_ext'. intros. by rewrite andb_true_r.
      * apply not_true_is_false. intros (i & _ & E)%existsb_exists. by rewrite andb_false_r in E.
  - intros x y _ _. split; [|done]. destruct (_ && _); simpl; [done|].
    apply not_true_is_false. by intros (i & _ & E)%existsb_exists.
Qed.

(** The pictures of a character and of a cursor. *)
Definition glyph (fg bg : list N) (ch : N) (i j : nat) : list N :=
  if N.testbit (default 0%N (get_char_bitmap ch !! j)) (N.of_nat (7 - i)) then fg else bg.
Definition fg_of (c : t) : list N := color_bytes FG_COLOR c.
Definition bg_of (c : t) : list N := color_bytes BG_COLOR c.
Lemma kept_colors c c' : kept c c' → fg_of c' = fg_of c ∧ bg_of c' = bg_of c.
Proof. intros [E _ _ _ _]. unfold fg_of, bg_of, color_bytes. unfold fb_info in E. by rewrite E. Qed.
Lemma color_length rgb c : length (color_bytes rgb c) = 4.
Proof. unfold color_bytes. by destruct (FramebufferInfo.format _). Qed.
Lemma glyph_rows ch : length (get_char_bitmap ch) = FONT_HEIGHT.
Proof.
  assert (Forall (λ g, length g = FONT_HEIGHT) FONT_DATA) as Hf.
  { apply (bool_decide_unpack _). vm_compute. exact I. }
  unfold get_char_bitmap. destruct (FONT_DATA !! N.to_nat ch) as [g|] eqn:E; [by apply (Forall_lookup_1 _ _ _ _ Hf E)|done].
Qed.
Lemma blank_glyph fg bg i j : glyph fg bg 32 i j = bg.
Proof.
  unfold glyph. assert (get_char_bitmap 32 = replicate 16 0%N) as -> by (vm_compute; reflexivity).
  assert (default 0%N (replicate 16 0%N !! j) = 0%N) as ->; [|done].
  destruct (replicate 16 0%N !! j) eqn:E; [|done]. by apply lookup_replicate in E as [-> _].
Qed.

Lemma draw_char_paints col row ch c :
  fb_ok c → col < cols c → row < rows c →
  (draw_char_at col row ch c).1 = true ∧
  paints c (draw_char_at col row ch c).2 (in_cell col row)
    (λ x y, glyph (fg_of c) (bg_of c) ch (x - col * FONT_WIDTH) (y - row * FONT_HEIGHT)).
Proof.
  intros Hc Hcol Hrow. unfold draw_char_at.
  rewrite (proj2 (Nat.leb_gt _ _) Hcol), (proj2 (Nat.leb_gt _ _) Hrow). cbn [orb fst snd]. split; [done|].
  destruct (kept_perf (λ s, s <| RenderPerfStats.glyph_draws ::= N.succ |>) c) as [K0 P0].
  set (c0 := c <| perf ::= _ |>) in *. clearbody c0. destruct (kept_colors _ _ K0) as [Ef Eb].
  destruct (kept_size _ _ K0) as [Ew Eh]. fold (fg_of c0). fold (bg_of c0). rewrite Ef, Eb, glyph_rows.
  destruct (draw_block_paints col row (seq 0 FONT_HEIGHT) (glyph (fg_of c) (bg_of c) ch) c0) as [K1 P1].
  - by eapply kept_ok.
  - by rewrite (ke_cols _ _ K0).
  - by rewrite (ke_rows _ _ K0).
  - intros j Hj. apply elem_of_seq in Hj. lia.
  - intros i j. unfold glyph. destruct (N.testbit _ _); apply color_length.
  - split; [by etrans|]. intros x y Hx Hy. unfold glyph in P1 |- *. rewrite P1, P0 by lia. unfold in_cell.
    rewrite existsb_seq. by rewrite !andb_assoc.
Qed.
Lemma draw_cursor_paints col row c :
  fb_ok c → col < cols c → row < rows c →
  paints c (draw_cursor col row c)
    (λ x y, in_cell col row x y && (row * FONT_HEIGHT + 14 <=? y)) (λ _ _, fg_of c).
Proof.
  intros Hc Hcol Hrow. unfold draw_cursor.
  rewrite (proj2 (Nat.leb_gt _ _) Hcol), (proj2 (Nat.leb_gt _ _) Hrow). cbn [orb].
  destruct (kept_perf (λ s, s <| RenderPerfStats.cursor_draws ::= N.succ |>) c) as [K0 P0].
  set (c0 := c <| perf ::= _ |>) in *. clearbody c0. destruct (kept_colors _ _ K0) as [Ef Eb].
  destruct (kept_size _ _ K0) as [Ew Eh].
  destruct (draw_block_paints col row (seq (FONT_HEIGHT - 2) 2) (λ _ _, color_bytes CURSOR_COLOR c0) c0) as [K1 P1].
  - by eapply kept_ok.
  - by rewrite (ke_cols _ _ K0).
  - by rewrite (ke_rows _ _ K0).
  - intros j Hj. apply elem_of_seq in Hj. font.
  - intros. apply color_length.
  - split; [by etrans|]. intros x y Hx Hy. rewrite P1, P0 by lia. change (color_bytes CURSOR_COLOR c0) with (fg_of c0).
    rewrite Ef. unfold in_cell. simpl.
    assert (forall b, (b && ((y =? row * FONT_HEIGHT + (FONT_HEIGHT - 2)) || ((y =? row * FONT_HEIGHT + S (FONT_HEIGHT - 2)) || false)))
      = b && (row * FONT_HEIGHT <=? y) && (y <? row * FONT_HEIGHT + FONT_HEIGHT) && (row * FONT_HEIGHT + 14 <=? y)) as Hb.
    { intros []; [|done]. simpl. apply eq_true_iff_eq.
      rewrite !orb_true_iff, !andb_true_iff, !Nat.leb_le, Nat.ltb_lt, !Nat.eqb_eq. font. }
    by rewrite Hb.
Qed.
Lemma clear_paints c : fb_ok c → paints c (clear c) (λ _ _, true) (λ _ _, bg_of c).
Proof.
  intros Hc. unfold clear.
  destruct (kept_perf (λ s, s <| RenderPerfStats.clear_calls ::= N.succ |>) c) as [K0 P0].
  set (c0 := c <| perf ::= _ |>) in *. clearbody c0. destruct (kept_size _ _ K0) as [Ew Eh].
  pose proof (kept_ok _ _ K0 Hc) as Hc0. fold (bg_of c).
  destruct (paints_fold (λ c1 y, foldl (λ c2 x, put_pixel x y (bg_of c) c2) c1 (seq 0 (width c1)))
    (λ y' x y, y =? y') (λ _ _, bg_of c) (seq 0 (height c0)) c0 Hc0) as [K1 P1].
  - intros c1 y Hy Hk. apply elem_of_seq in Hy. pose proof (kept_ok _ _ Hk Hc0) as Hc1. destruct (kept_size _ _ Hk) as [Ew1 Eh1].
    eapply paints_ext; [apply (paints_fold _ (λ x' x y', (x =? x') && (y' =? y)) (λ _ _, bg_of c)); [done|]|].
    + intros c2 x Hx Hk2. apply elem_of_seq in Hx. destruct (kept_size _ _ Hk2) as [Ew2 Eh2].
      apply put_pixel_spec; [by eapply kept_ok|lia|lia|apply color_length].
    + intros x y' Hx Hy'. split; [|done]. destruct (y' =? y).
      * apply existsb_exists. exists x. rewrite in_seq, Nat.eqb_refl. lia.
      * apply not_true_is_false. intros (i & _ & E)%existsb_exists. by rewrite andb_false_r in E.
  - split; [by etrans|]. intros x y Hx Hy. rewrite P1 by lia.
    assert (existsb (λ y', y =? y') (seq 0 (height c0)) = true) as ->; [|done].
    apply existsb_exists. exists y. rewrite in_seq, Nat.eqb_refl. lia.
Qed.

(** ** The grid *)

(** What a cell shows: a character, perhaps with the cursor under it. *)
Definition grid : Type := nat → nat → N * bool.
Definition image (fg bg : list N) (cell : N * bool) (i j : nat) : list N :=
  if cell.2 && (14 <=? j) then fg else glyph fg bg cell.1 i j.
Record shows (c : t) (g : grid) : Prop := {
  sg_ok : fb_ok c;
  sg_cells col row i j : col < cols c → row < rows c → i < FONT_WIDTH → j < FONT_HEIGHT →
    px (col * FONT_WIDTH + i) (row * FONT_HEIGHT + j) c = image (fg_of c) (bg_of c) (g col row) i j
}.
Definition set_cell (col row : nat) (cell : N * bool) (g : grid) : grid :=
  λ col' row', if (col' =? col) && (row' =? row) then cell else g col' row'.
Lemma shows_ext c g g' : shows c g → (∀ col row, col < cols c → row < rows c → g col row = g' col row) → shows c g'.
Proof. intros [Ho Hg] He. split; [done|]. intros. rewrite Hg by done. by rewrite He. Qed.
Lemma in_cell_spec col row col' row' i j :
  i < FONT_WIDTH → j < FONT_HEIGHT →
  in_cell col row (col' * FONT_WIDTH + i) (row' * FONT_HEIGHT + j) = (col' =? col) && (row' =? row).
Proof.
  intros Hi Hj. apply eq_true_iff_eq. unfold in_cell.
  rewrite !andb_true_iff, !Nat.leb_le, !Nat.ltb_lt, !Nat.eqb_eq. font.
Qed.
(** Painting with a region of cells. *)
Lemma paints_shows c c' g g' region f :
  shows c g → paints c c' region f →
  (∀ col row i j, col < cols c → row < rows c → i < FONT_WIDTH → j < FONT_HEIGHT →
    (if region (col * FONT_WIDTH + i) (row * FONT_HEIGHT + j) then f (col * FONT_WIDTH + i) (row * FONT_HEIGHT + j)
     else image (fg_of c) (bg_of c) (g col row) i j) = image (fg_of c) (bg_of c) (g' col row) i j) →
  shows c' g'.
Proof.
  intros [Ho Hg] [Hk Hp] He. destruct (kept_colors _ _ Hk) as [Ef Eb]. split; [by eapply kept_ok|].
  intros col row i j. rewrite (ke_cols _ _ Hk), (ke_rows _ _ Hk), Ef, Eb. intros Hcol Hrow Hi Hj.
  pose proof (fo_cols _ Ho). pose proof (fo_rows _ Ho). rewrite Hp by font. rewrite Hg by done. by apply He.
Qed.
Lemma draw_char_shows col row ch c g :
  shows c g → col < cols c → row < rows c → kept c (draw_char_at col row ch c).2 ∧
  shows (draw_char_at col row ch c).2 (set_cell col row (ch, false) g).
Proof.
  intros Hs Hcol Hrow. destruct (draw_char_paints col row ch c (sg_ok _ _ Hs) Hcol Hrow) as [_ Hp].
  split; [apply Hp|]. eapply paints_shows; [done|exact Hp|]. intros col' row' i j _ _ Hi Hj.
  cbv beta. rewrite in_cell_spec by done. unfold set_cell. destruct (Nat.eqb_spec col' col) as [->|]; [|done].
  destruct (Nat.eqb_spec row' row) as [->|]; [|done]. simpl. unfold image. simpl. f_equal; lia.
Qed.
Lemma draw_cursor_shows col row c g :
  shows c g → col < cols c → row < rows c → kept c (draw_cursor col row c) ∧
  shows (draw_cursor col row c) (set_cell col row ((g col row).1, true) g).
Proof.
  intros Hs Hcol Hrow. pose proof (draw_cursor_paints col row c (sg_ok _ _ Hs) Hcol Hrow) as Hp.
  split; [apply Hp|]. eapply paints_shows; [done|exact Hp|]. intros col' row' i j _ _ Hi Hj.
  cbv beta. rewrite in_cell_spec by done. unfold set_cell. destruct (Nat.eqb_spec col' col) as [->|]; [|done].
  destruct (Nat.eqb_spec row' row) as [->|]; [|done]. simpl. unfold image. simpl.
  destruct (Nat.leb_spec 14 j).
  - by rewrite (proj2 (Nat.leb_le _ _)) by lia.
  - rewrite (proj2 (Nat.leb_gt _ _)) by lia. by rewrite andb_false_r.
Qed.
Lemma clear_shows c : fb_ok c → kept c (clear c) ∧ shows (clear c) (λ _ _, (32%N, false)).
Proof.
  intros Hc. destruct (clear_paints c Hc) as [Hk Hp]. split; [done|]. destruct (kept_colors _ _ Hk) as [Ef Eb].
  split; [by eapply kept_ok|]. intros col row i j. rewrite (ke_cols _ _ Hk), (ke_rows _ _ Hk), Ef, Eb. intros Hcol Hrow Hi Hj.
  pose proof (fo_cols _ Hc). pose proof (fo_rows _ Hc). rewrite Hp by font. unfold image. simpl. by rewrite blank_glyph.
Qed.
Lemma perf_shows f c g : shows c g → shows (c <| perf ::= f |>) g.
Proof. intros [Ho Hg]. split; [by destruct Ho|]. done. Qed.

(** ** Text *)

Definition put_row (col row : nat) (bs : list N) (g : grid) : grid := λ c r,
  if (r =? row) && (col <=? c) then match bs !! (c - col) with Some b => (b, false) | None => g c r end else g c r.
Lemma draw_bytes_shows bs : ∀ col row n c g,
  shows c g → 10%N ∉ bs → row < rows c → (col + length bs ≤ cols c ∨ row + 1 = rows c) → 0 < cols c →
  kept c (draw_bytes_at col row bs n c).2 ∧ shows (draw_bytes_at col row bs n c).2 (put_row col row bs g).
Proof.
  induction bs as [|b bs IH]; intros col row n c g Hs Hnl Hrow Hfit Hcols; cbn [draw_bytes_at].
  { split; [done|]. eapply shows_ext; [done|]. intros c' r _ _. unfold put_row. by destruct (_ && _). }
  apply not_elem_of_cons in Hnl as [Hb Hnl]. rewrite (proj2 (N.eqb_neq b 10)) by congruence.
  destruct (Nat.leb_spec (cols c) col) as [Hge|Hlt]; cbv beta iota.
  - destruct Hfit as [Hfit|Hfit]; [simpl in Hfit; lia|]. rewrite (proj2 (Nat.leb_le (rows c) (row + 1))) by lia. split; [done|].
    eapply shows_ext; [done|]. intros c' r Hc' _. simpl in Hc'. unfold put_row. rewrite (proj2 (Nat.leb_gt col c')) by lia. by rewrite andb_false_r.
  - rewrite (proj2 (Nat.leb_gt (rows c) row)) by done.
    destruct (draw_char_shows col row b c g Hs Hlt Hrow) as [K1 S1].
    destruct (draw_char_at col row b c) as [ok c1]. simpl in K1, S1.
    destruct (IH (col + 1) row (if ok then n + 1 else n) c1 (set_cell col row (b, false) g)) as [K2 S2]; try done.
    + by rewrite (ke_rows _ _ K1).
    + rewrite (ke_rows _ _ K1), (ke_cols _ _ K1). simpl in Hfit. lia.
    + by rewrite (ke_cols _ _ K1).
    + split; [by etrans|]. eapply shows_ext; [done|]. intros c' r _ _. unfold put_row, set_cell.
      destruct (Nat.eqb_spec r row) as [->|]; simpl; [|by rewrite andb_false_r].
      destruct (Nat.leb_spec (col + 1) c'), (Nat.leb_spec col c'); try lia.
      * replace (c' - col) with (S (c' - (col + 1))) by lia. simpl. rewrite (proj2 (Nat.eqb_neq c' col)) by lia. simpl. done.
      * assert (c' = col) as -> by lia. by rewrite Nat.eqb_refl, Nat.sub_diag.
      * by rewrite (proj2 (Nat.eqb_neq c' col)) by lia.
Qed.
Lemma draw_text_shows text col row c g :
  shows c g → 10%N ∉ text → row < rows c → (col + Str.len text ≤ cols c ∨ row + 1 = rows c) → 0 < cols c →
  kept c (draw_text_at col row text c).2 ∧ shows (draw_text_at col row text c).2 (put_row col row (Utf8.as_bytes text) g).
Proof.
  intros Hs Hnl Hrow Hfit Hcols. unfold draw_text_at.
  apply (perf_shows (λ s, s <| RenderPerfStats.text_draw_calls ::= N.succ |>)) in Hs.
  pose proof (proj1 (kept_perf (λ s, s <| RenderPerfStats.text_draw_calls ::= N.succ |>) c)) as K0.
  set (c0 := c <| perf ::= _ |>) in *. clearbody c0.
  destruct (draw_bytes_shows (Utf8.as_bytes text) col row 0 c0 g) as [K1 S1]; try done.
  - intros Hin. apply Hnl. by apply (Utf8.elem_of_as_bytes_ascii text 10).
  - by rewrite (ke_rows _ _ K0).
  - rewrite (ke_rows _ _ K0), (ke_cols _ _ K0).
    assert (length (Utf8.as_bytes text) = Str.len text) as ->; [|done].
    clear. induction text as [|ch text IH]; [done|]. change (Utf8.as_bytes (ch :: text)) with (Utf8.encode ch ++ Utf8.as_bytes text).
    rewrite length_app, IH. cbn [Str.len]. f_equal. unfold Utf8.encode, Str.len_utf8. by repeat destruct (_ <? _)%N.
  - by rewrite (ke_cols _ _ K0).
  - split; [by etrans|done].
Qed.
(** Blanks to the end of a row. *)
Lemma clear_tail_shows row from c g :
  shows c g → row < rows c →
  let c' := foldl (λ c col, (draw_char_at col row 32%N c).2) c (seq from (cols c - from)) in
  kept c c' ∧ shows c' (λ col r, if (r =? row) && (from <=? col) then (32%N, false) else g col r).
Proof.
  intros Hs Hrow. cbv zeta. remember (cols c - from) as n eqn:En. revert from c g Hs Hrow En.
  induction n as [|n IH]; intros from c g Hs Hrow En; cbn [seq foldl].
  { split; [done|]. eapply shows_ext; [done|]. intros col r Hcol _. rewrite (proj2 (Nat.leb_gt from col)) by lia. by rewrite andb_false_r. }
  destruct (draw_char_shows from row 32%N c g Hs) as [K1 S1]; [lia|done|].
  destruct (IH (S from) _ _ S1) as [K2 S2]; [by rewrite (ke_rows _ _ K1)|rewrite (ke_cols _ _ K1); lia|].
  split; [by etrans|]. eapply shows_ext; [done|]. intros col r _ _. unfold set_cell.
  destruct (Nat.eqb_spec r row) as [->|]; simpl; [|by rewrite andb_false_r].
  destruct (Nat.leb_spec (S from) col), (Nat.leb_spec from col); try lia; try done.
  - by assert (col = from) as -> by lia; rewrite Nat.eqb_refl.
  - by rewrite (proj2 (Nat.eqb_neq col from)) by lia.
Qed.
(** Several lines, one under the other. *)
Definition put_rows (row : nat) (ls : list Str.t) (g : grid) : grid := λ c r,
  if row <=? r then
    match ls !! (r - row) with
    | Some l => match Utf8.as_bytes l !! c with Some b => (b, false) | None => g c r end
    | None => g c r
    end
  else g c r.
Lemma draw_lines_shows ls : ∀ row c g,
  shows c g → Forall (λ l, 10%N ∉ l ∧ Str.len l ≤ cols c) ls → row + length ls ≤ rows c → 0 < cols c →
  let c' := foldl (λ c '(row, line), (draw_text_at 0 row line c).2) c (zip (seq row (length ls)) ls) in
  kept c c' ∧ shows c' (put_rows row ls g).
Proof.
  induction ls as [|l ls IH]; intros row c g Hs Hls Hrows Hcols; cbv zeta; cbn [length seq zip zip_with foldl].
  { split; [done|]. eapply shows_ext; [done|]. intros c' r _ _. unfold put_rows. by destruct (row <=? r). }
  apply Forall_cons in Hls as [[Hnl Hl] Hls]. simpl in Hrows.
  destruct (draw_text_shows l 0 row c g) as [K1 S1]; [done|done|lia|left; lia|done|].
  destruct (IH (S row) (draw_text_at 0 row l c).2 (put_row 0 row (Utf8.as_bytes l) g)) as [K2 S2].
  - done.
  - rewrite (ke_cols _ _ K1). done.
  - rewrite (ke_rows _ _ K1). lia.
  - by rewrite (ke_cols _ _ K1).
  - split; [by etrans|]. eapply shows_ext; [done|]. intros c' r _ _. unfold put_rows, put_row.
    destruct (Nat.leb_spec (S row) r), (Nat.leb_spec row r); try lia.
    + replace (r - row) with (S (r - S row)) by lia. simpl. rewrite (proj2 (Nat.eqb_neq r row)) by lia. done.
    + assert (r = row) as -> by lia. rewrite Nat.eqb_refl, Nat.sub_diag, Nat.sub_0_r. simpl. done.
    + by rewrite (proj2 (Nat.eqb_neq r row)) by lia.
Qed.

(** ** Differences *)

Lemma filter_seq_head (P : nat → bool) a n x l :
  filter (λ i, P i = true) (seq a n) = x :: l → P x = true ∧ a ≤ x < a + n ∧ ∀ i, a ≤ i < x → P i = false.
Proof.
  revert a. induction n as [|n IH]; intros a; [done|]. cbn [seq]. rewrite filter_cons. case_decide as E.
  - intros [= -> <-]. split; [done|]. split; [lia|]. intros; lia.
  - intros F. apply IH in F as (Hx & Hr & Hi). split; [done|]. split; [lia|]. intros i Hia.
    destruct (decide (i = a)) as [->|]; [by apply not_true_is_false|]. apply Hi. lia.
Qed.
Lemma filter_seq_last (P : nat → bool) a n x :
  last (filter (λ i, P i = true) (seq a n)) = Some x → P x = true ∧ a ≤ x < a + n ∧ ∀ i, x < i < a + n → P i = false.
Proof.
  induction n as [|n IH]; [done|]. rewrite seq_S, filter_app, filter_cons, filter_nil. case_decide as E.
  - rewrite last_snoc. intros [= <-]. split; [done|]. split; [lia|]. intros; lia.
  - rewrite app_nil_r. intros F. apply IH in F as (Hx & Hr & Hi). split; [done|]. split; [lia|]. intros i Hia.
    destruct (decide (i = a + n)) as [->|]; [by apply not_true_is_false|]. apply Hi. lia.
Qed.
Lemma filter_seq_nil (P : nat → bool) a n :
  filter (λ i, P i = true) (seq a n) = [] → ∀ i, a ≤ i < a + n → P i = false.
Proof.
  intros F i Hi. apply not_true_is_false. intros HP.
  assert (i ∈ filter (λ i, P i = true) (seq a n)) as Hin by (apply list_elem_of_filter; split; [done|apply elem_of_seq; lia]).
  rewrite F in Hin. by apply not_elem_of_nil in Hin.
Qed.
Lemma as_bytes_ascii s : StrSpec.ascii s → Utf8.as_bytes s = s.
Proof.
  induction 1 as [|ch s Hch _ IH]; [done|]. change (Utf8.as_bytes (ch :: s)) with (Utf8.encode ch ++ Utf8.as_bytes s).
  unfold Utf8.encode. rewrite (proj2 (N.ltb_lt ch 0x80)) by done. by rewrite IH.
Qed.
Lemma slice_ascii a b s : StrSpec.ascii s → a ≤ b → b ≤ length s → slice a b s = Return (take (b - a) (drop a s)).
Proof.
  intros Hs Ha Hb. unfold slice. rewrite StrSpec.split_at_ascii by done. simpl.
  rewrite StrSpec.split_at_ascii; [|by apply Forall_take|rewrite length_take; lia]. simpl. by rewrite skipn_firstn_comm.
Qed.
(** A line that fits on a row of [n] cells. *)
Definition line_ok (n : nat) (l : Str.t) : Prop := StrSpec.ascii l ∧ 10%N ∉ l ∧ length l ≤ n.
Definition cell (l : Str.t) (col : nat) : N := cursor_cell_byte l col.
Lemma cell_ascii l col : StrSpec.ascii l → cell l col = default 32%N (l !! col).
Proof. intros Hl. unfold cell, cursor_cell_byte. by rewrite as_bytes_ascii. Qed.

(** What an update has to do: the row shows the new line, no other row changes, and a cell keeps its
    cursor or loses it. *)
Definition updates_row (row : nat) (new : Str.t) (c : t) (g : grid) (c' : t) : Prop :=
  kept c c' ∧ ∃ g', shows c' g' ∧ (∀ col r, col < cols c → r < rows c → r ≠ row → g' col r = g col r) ∧
    ∀ col, col < cols c → (g' col row).1 = cell new col ∧ ((g' col row).2 = (g col row).2 ∨ (g' col row).2 = false).
(** The span of a difference, from [start] to [stop]: outside of it the cells agree, but for the tail of
    a longer old line. *)
Lemma blank_past_end l col : StrSpec.ascii l → length l ≤ col → cell l col = 32%N.
Proof. intros Hl Hc. rewrite cell_ascii by done. by rewrite (proj2 (lookup_ge_None _ _)). Qed.
Definition span_update (row start stop : nat) (old new : Str.t) : LineUpdate.t :=
  LineUpdate.mk row start (take (stop - start) (drop start new)) (if length new <? length old then Some (length new) else None).
Lemma diff_span old new n row :
  line_ok n old → line_ok n new →
  ∃ u, diff_line_update old new n row = Return u ∧ (old = new → u = None) ∧
    match u with
    | None => ∀ col, col < n → cell old col = cell new col
    | Some u => ∃ start stop, u = span_update row start stop old new ∧ start < n ∧ stop ≤ length new ∧
        ∀ col, col < n → ¬ (start ≤ col < stop) → length old ≤ length new ∨ col < length new → cell old col = cell new col
    end.
Proof.
  intros (Ao & _ & Lo) (An & _ & Ln). unfold diff_line_update. case_bool_decide as E; [subst; by exists None|].
  rewrite !StrSpec.len_ascii by done. set (m := Nat.min (Nat.max (length old) (length new)) n).
  assert (∀ i, i < n → (i < m → differs old new i = false) → cell old i = cell new i) as Hd.
  { intros i Hi Hlt. destruct (Nat.lt_ge_cases i m) as [Him|Him]; [|by rewrite !blank_past_end by (done || lia)].
    specialize (Hlt Him). apply negb_false_iff in Hlt. by apply N.eqb_eq in Hlt. }
  destruct (filter (λ idx, differs old new idx = true) (seq 0 m)) as [|start rest] eqn:F.
  { exists None. split; [done|]. split; [done|]. intros col Hcol. apply Hd; [done|]. intros. apply (filter_seq_nil (differs old new) 0 m F). lia. }
  apply filter_seq_head in F as (Ps & Hstart & Hbefore).
  destruct (last (filter (λ idx, differs old new idx = true) (seq start (m - start)))) as [lst|] eqn:L.
  2: { apply last_None in L. pose proof (filter_seq_nil (differs old new) _ _ L start ltac:(lia)). congruence. }
  apply filter_seq_last in L as (Pl & Hlast & Hafter). cbn [default from_option id].
  set (stop := Nat.min (lst + 1) (length new)). rewrite (Nat.min_l (length new)) by lia.
  assert ((if start <? stop then slice start stop new else Return []) = Return (take (stop - start) (drop start new))) as ->.
  { destruct (Nat.ltb_spec start stop); [apply slice_ascii; [done|lia|unfold stop; lia]|]. by replace (stop - start) with 0 by lia. }
  eexists. split; [done|]. split; [done|]. exists start, stop. split; [done|]. split; [lia|]. split; [unfold stop; lia|].
  intros col Hcol Hout Hlen. apply Hd; [done|]. intros Hcm. destruct (Nat.lt_ge_cases col start); [apply Hbefore; lia|].
  destruct (Nat.lt_ge_cases lst col); [apply Hafter; lia|].
  assert (length new ≤ col) as Hge by (unfold stop in Hout; lia). destruct Hlen as [Hlen|?]; [|lia].
  unfold differs. fold (cell old col). fold (cell new col). by rewrite !blank_past_end by (done || lia).
Qed.
(** Drawing the span of a line. *)
Definition put_span (row start stop : nat) (new : Str.t) (g : grid) : grid := λ col r,
  if (r =? row) && ((start <=? col) && (col <? stop)) then (cell new col, false) else g col r.
Lemma span_shows row start stop new c g :
  shows c g → row < rows c → line_ok (cols c) new → start < cols c → stop ≤ length new →
  let text := take (stop - start) (drop start new) in
  let c' := match text with [] => c | ch :: rest => (draw_text_at start row (ch :: rest) c).2 end in
  kept c c' ∧ shows c' (put_span row start stop new g).
Proof.
  intros Hs Hrow (An & Nn & Ln) Hstart Hstop text. cbv zeta.
  assert (∀ col, start ≤ col → text !! (col - start) = if col <? stop then new !! col else None) as Htext.
  { intros col Hcol. unfold text. destruct (Nat.ltb_spec col stop).
    - rewrite lookup_take_lt by lia. rewrite lookup_drop. f_equal. lia.
    - apply lookup_take_ge. lia. }
  assert (StrSpec.ascii text) as At by (by apply Forall_take, Forall_drop).
  assert (10%N ∉ text) as Nt.
  { intros Hin. apply Nn. apply elem_of_take in Hin as (k & Hk & _). rewrite lookup_drop in Hk. by apply list_elem_of_lookup_2 in Hk. }
  assert (length text ≤ stop - start) as Lt by (unfold text; rewrite length_take; lia). clearbody text.
  assert (∀ c r, put_row start row text g c r = put_span row start stop new g c r) as Hput.
  { intros col r. unfold put_row, put_span. destruct (r =? row); [|done]. simpl. destruct (Nat.leb_spec start col) as [Hc|]; [|done].
    rewrite Htext by done. simpl. destruct (Nat.ltb_spec col stop); [|done]. destruct (new !! col) as [b|] eqn:Eb; [|apply lookup_ge_None in Eb; lia].
    by rewrite cell_ascii, Eb. }
  destruct text as [|ch text'].
  - split; [done|]. eapply shows_ext; [done|]. intros col r _ _. rewrite <-Hput. unfold put_row. by destruct (_ && _).
  - set (text := ch :: text') in *. clearbody text. destruct (draw_text_shows text start row c g) as [K S]; [done|done|done| |lia|].
    + left. rewrite StrSpec.len_ascii by done. lia.
    + split; [done|]. rewrite as_bytes_ascii in S by done. eapply shows_ext; [exact S|]. intros; by rewrite Hput.
Qed.
Lemma diff_spec old new row c g :
  shows c g → row < rows c → line_ok (cols c) old → line_ok (cols c) new → (∀ col, col < cols c → (g col row).1 = cell old col) →
  ∃ u, diff_line_update old new (cols c) row = Return u ∧ (old = new → u = None) ∧
    updates_row row new c g (foldl CombinedView.apply_update c (option_list u)).
Proof.
  intros Hs Hrow Ho Hn Hg. destruct (diff_span old new (cols c) row Ho Hn) as (u & -> & Hnone & Hu).
  exists u. split; [done|]. split; [done|]. destruct u as [u|]; cbn [option_list foldl].
  2: { split; [done|]. exists g. split; [done|]. split; [done|]. intros col Hcol. split; [|by left]. rewrite Hg by done. by apply Hu. }
  destruct Hu as (start & stop & -> & Hstart & Hstop & Hsame). change (option_list (Some ?u)) with [u]. cbn [foldl].
  destruct (span_shows row start stop new c g Hs Hrow Hn Hstart Hstop) as [K1 S1]. unfold CombinedView.apply_update, span_update.
  cbn [LineUpdate.text LineUpdate.start_col LineUpdate.row LineUpdate.clear_from].
  set (c1 := match take _ _ with [] => c | ch :: rest' => _ end) in *. clearbody c1.
  assert (∀ col r, r ≠ row → put_span row start stop new g col r = g col r) as Hother.
  { intros col r Hr. unfold put_span. by rewrite (proj2 (Nat.eqb_neq r row)) by done. }
  assert (∀ col, col < cols c → length old ≤ length new ∨ col < length new →
    (put_span row start stop new g col row).1 = cell new col ∧
    ((put_span row start stop new g col row).2 = (g col row).2 ∨ (put_span row start stop new g col row).2 = false)) as Hrow'.
  { intros col Hcol Hlen. unfold put_span. rewrite Nat.eqb_refl. cbn [andb].
    destruct (Nat.leb_spec start col), (Nat.ltb_spec col stop); cbn [andb fst snd]; try (split; [done|by right]);
      (split; [|by left]); rewrite Hg by done; apply Hsame; (done || lia). }
  destruct (Nat.ltb_spec (length new) (length old)) as [Hshort|Hlong].
  - destruct Ho as (_ & _ & Lo). destruct Hn as (An & _ & Ln). rewrite (ke_cols _ _ K1), (Nat.min_l (length new)) by lia.
    rewrite <-(ke_cols _ _ K1). destruct (clear_tail_shows row (length new) c1 _ S1) as [K2 S2]; [by rewrite (ke_rows _ _ K1)|].
    split; [by etrans|]. eexists. split; [exact S2|]. split.
    + intros col r _ _ Hr. rewrite (proj2 (Nat.eqb_neq r row)) by done. by apply Hother.
    + intros col Hcol. rewrite Nat.eqb_refl. cbn [andb]. destruct (Nat.leb_spec (length new) col) as [Hge|Hlt]; [|by apply Hrow'; auto].
      split; [by rewrite blank_past_end|by right].
  - split; [done|]. eexists. split; [exact S1|]. split; [auto|]. intros col Hcol. apply Hrow'; auto.
Qed.

(** ** The editor's screen *)

Section editor.
Definition row_text (lines : list Str.t) (row : nat) : Str.t := default (str "~") (lines !! row).
Definition screen (content rows : nat) (lines : list Str.t) (status : Str.t) (cursor : option (nat * nat)) : grid :=
  λ col row, (if row <? content then cell (row_text lines row) col
              else if row =? rows - 1 then cell status col else 32%N,
              bool_decide (cursor = Some (col, row))).

(** The changes up to row [k]. *)
Definition changed (k : nat) (old new : list Str.t) (c : t) (g g' : grid) : Prop :=
  ∀ col row, col < cols c → row < rows c →
    if row <? k
    then (g' col row).1 = cell (row_text new row) col ∧ ((g' col row).2 = (g col row).2 ∨ (g' col row).2 = false)
         ∧ (row_text old row = row_text new row → g' col row = g col row)
    else g' col row = g col row.
Lemma plan_shows k old new content c g :
  shows c g → k ≤ content → content ≤ rows c → length old = content → length new = content →
  Forall (line_ok (cols c)) old → Forall (line_ok (cols c)) new →
  (∀ col row, col < cols c → row < content → (g col row).1 = cell (row_text old row) col) →
  ∃ plan, CombinedView.plan_lines old new (cols c) k = Return plan ∧
    let c' := foldl CombinedView.apply_update c plan in kept c c' ∧ ∃ g', shows c' g' ∧ changed k old new c g g'.
Proof.
  intros Hs Hk Hc Lo Ln Ho Hn Hg. unfold CombinedView.plan_lines. induction k as [|k IH].
  { exists []. split; [done|]. split; [done|]. exists g. by split. }
  destruct IH as (plan & E & K1 & g1 & S1 & C1); [lia|]. rewrite seq_S, fold_outcome_app, E. cbn [mbind outcome_bind fold_outcome plus].
  set (c1 := foldl CombinedView.apply_update c plan) in *.
  destruct (lookup_lt_is_Some_2 old k) as [o Eo]; [lia|]. destruct (lookup_lt_is_Some_2 new k) as [n En]; [lia|].
  rewrite Eo, En. simpl (default _ (Some _)).
  assert (row_text old k = o ∧ row_text new k = n) as [To Tn] by (unfold row_text; by rewrite Eo, En).
  destruct (diff_spec o n k c1 g1) as (u & Eu & Hu & K2 & g2 & S2 & Other & Row).
  - done.
  - rewrite (ke_rows _ _ K1). lia.
  - rewrite (ke_cols _ _ K1). by apply (Forall_lookup_1 _ _ _ _ Ho Eo).
  - rewrite (ke_cols _ _ K1). by apply (Forall_lookup_1 _ _ _ _ Hn En).
  - intros col. rewrite (ke_cols _ _ K1). intros Hcol. pose proof (C1 col k Hcol ltac:(lia)) as Ck.
    rewrite (proj2 (Nat.ltb_ge k k)) in Ck by done. rewrite Ck, Hg by (done || lia). by rewrite To.
  - rewrite (ke_cols _ _ K1) in Eu. rewrite Eu. cbn [mbind outcome_bind]. eexists. split; [done|].
    cbv zeta. rewrite foldl_app. fold c1. split; [by etrans|].
    rewrite (ke_cols _ _ K1), (ke_rows _ _ K1) in *.
    destruct (decide (o = n)) as [Heq|Hne].
    + rewrite (Hu Heq). simpl. exists g1. split; [done|]. intros col row Hcol Hrow. specialize (C1 col row Hcol Hrow).
      destruct (Nat.ltb_spec row (S k)), (Nat.ltb_spec row k); try lia; try done.
      assert (row = k) as -> by lia. rewrite C1, Hg, To, Tn, Heq by (done || lia). split; [done|]. by split; [left|].
    + exists g2. split; [done|]. intros col row Hcol Hrow. specialize (C1 col row Hcol Hrow).
      destruct (Nat.ltb_spec row (S k)), (Nat.ltb_spec row k); try lia.
      * by rewrite Other by (done || lia).
      * assert (row = k) as -> by lia. rewrite <-C1, To, Tn. destruct (Row col Hcol) as [R1 R2].
        split; [done|]. split; [done|]. done.
      * by rewrite Other by (done || lia).
Qed.

(** The status on the last row: the old one must not be longer. *)
Lemma status_shows status c g :
  shows c g → 10%N ∉ status → 0 < rows c → 0 < cols c →
  kept c (draw_text_at 0 (rows c - 1) status c).2 ∧
  shows (draw_text_at 0 (rows c - 1) status c).2 (put_row 0 (rows c - 1) (Utf8.as_bytes status) g).
Proof. intros Hs Hnl Hr Hc. apply draw_text_shows; [done|done|lia|right; lia|done]. Qed.
Lemma cursor_shows target c g :
  shows c g → (∀ col row, target = Some (col, row) → row < rows c) → kept c (CombinedView.draw_cursor_at target c) ∧
  shows (CombinedView.draw_cursor_at target c) (λ col row, if bool_decide (target = Some (col, row)) then ((g col row).1, true) else g col row).
Proof.
  intros Hs Ht. destruct target as [[tc tr]|]; cbn [CombinedView.draw_cursor_at].
  2: { split; [done|]. eapply shows_ext; [done|]. intros. by rewrite bool_decide_false. }
  specialize (Ht tc tr eq_refl). destruct (Nat.lt_ge_cases tc (cols c)) as [Hlt|Hge].
  - destruct (draw_cursor_shows tc tr c g Hs Hlt Ht) as [K S]. split; [done|]. eapply shows_ext; [done|].
    intros col row _ _. unfold set_cell. case_bool_decide as E.
    + injection E as <- <-. by rewrite !Nat.eqb_refl.
    + destruct (Nat.eqb_spec col tc) as [->|]; [|done]. destruct (Nat.eqb_spec row tr) as [->|]; [|done]. by destruct E.
  - unfold draw_cursor. rewrite (proj2 (Nat.leb_le _ _) Hge). simpl. split; [done|]. eapply shows_ext; [done|].
    intros col row Hcol _. rewrite bool_decide_false; [done|]. intros [= -> _]. lia.
Qed.
Lemma finish_shows ticks c g : shows c g → kept c (CombinedView.finish ticks c) ∧ shows (CombinedView.finish ticks c) g.
Proof.
  intros Hs. unfold CombinedView.finish. destruct ticks as [e|]; [|done]. unfold perf_frame_end.
  destruct (RenderPerfStats.frame_start_ticks (perf c)); [|done]. split; [apply kept_perf|by apply perf_shows].
Qed.

(** What the theorem asks of the editor and of the screen: at least one row is left to the status, and
    the lines of the text fit. *)
Definition new_lines (s : Vi.EditorState.t) (v : CombinedView.t) : list Str.t :=
  build_editor_lines s (rows (CombinedView.console v) - CombinedView.reserved_lines v).
Record drawable (s : Vi.EditorState.t) (v : CombinedView.t) : Prop := {
  dr_content : rows (CombinedView.console v) - CombinedView.reserved_lines v < rows (CombinedView.console v);
  dr_cols : 0 < cols (CombinedView.console v);
  dr_lines : Forall (line_ok (cols (CombinedView.console v))) (new_lines s v);
  dr_status : 10%N ∉ EditorView.render_status s;
  dr_overlay : CombinedView.perf_overlay_enabled v = false
}.
Definition editor_screen (s : Vi.EditorState.t) (v : CombinedView.t) : grid :=
  let content := rows (CombinedView.console v) - CombinedView.reserved_lines v in
  screen content (rows (CombinedView.console v)) (new_lines s v) (EditorView.render_status s)
    (CombinedView.cursor_target s content).

Lemma target_row s content col row : CombinedView.cursor_target s content = Some (col, row) → row < content.
Proof. unfold CombinedView.cursor_target. destruct (Nat.ltb_spec (Vi.Position.row (Vi.Cursor.position (Vi.EditorState.cursor s))) content); [|done]. by intros [= _ <-]. Qed.
Lemma new_lines_length s v : length (new_lines s v) = rows (CombinedView.console v) - CombinedView.reserved_lines v.
Proof. unfold new_lines, build_editor_lines. by rewrite length_fmap, length_seq. Qed.

Lemma redraw_all_shows s ticks v :
  fb_ok (CombinedView.console v) → drawable s v →
  kept (CombinedView.console v) (CombinedView.console (CombinedView.redraw_all s ticks v)) ∧
  shows (CombinedView.console (CombinedView.redraw_all s ticks v)) (editor_screen s v).
Proof.
  intros Ho [Hcont Hcols Hlines Hstat Hov]. unfold CombinedView.redraw_all.
  destruct (clear_shows _ Ho) as [K0 S0]. set (c0 := clear (CombinedView.console v)) in *. clearbody c0.
  rewrite Hov, (ke_rows _ _ K0), (ke_cols _ _ K0).
  fold (new_lines s v). set (content := rows (CombinedView.console v) - CombinedView.reserved_lines v) in *.
  pose proof (new_lines_length s v) as Hlen. fold content in Hlen.
  destruct (draw_lines_shows (new_lines s v) 0 c0 _ S0) as [K1 S1].
  { rewrite (ke_cols _ _ K0). eapply Forall_impl; [exact Hlines|]. intros l (Ha & Hnl & Hl). by rewrite StrSpec.len_ascii. }
  { rewrite (ke_rows _ _ K0). lia. }
  { by rewrite (ke_cols _ _ K0). }
  cbv zeta in K1, S1. rewrite Hlen in K1, S1. set (c1 := foldl _ c0 _) in *. clearbody c1.
  assert (kept (CombinedView.console v) c1) as K01 by by etrans.
  unfold CombinedView.status_line. rewrite app_nil_r.
  destruct (status_shows (EditorView.render_status s) c1 _ S1 Hstat) as [K2 S2].
  { rewrite (ke_rows _ _ K01). lia. } { by rewrite (ke_cols _ _ K01). }
  rewrite (ke_rows _ _ K01) in K2, S2. set (c2 := (draw_text_at 0 _ _ c1).2) in *. clearbody c2.
  assert (kept (CombinedView.console v) c2) as K02 by by etrans.
  destruct (cursor_shows (CombinedView.cursor_target s content) c2 _ S2) as [K3 S3].
  { intros col row Ht%target_row. rewrite (ke_rows _ _ K02). lia. }
  set (c3 := CombinedView.draw_cursor_at _ c2) in *. clearbody c3.
  destruct (finish_shows ticks c3 _ S3) as [K4 S4]. assert (kept (CombinedView.console v) c3) as K03 by by etrans.
  simpl. split; [by etrans|]. eapply shows_ext; [exact S4|]. intros col row _ Hrow.
  rewrite (ke_rows _ _ K4), (ke_rows _ _ K03) in Hrow. unfold editor_screen, screen. fold content.
  unfold put_row, put_rows, row_text, cell, cursor_cell_byte. rewrite !Nat.sub_0_r. simpl.
  assert (∀ (p : N * bool), p.2 = false → (if bool_decide (CombinedView.cursor_target s content = Some (col, row)) then (p.1, true) else p)
    = (p.1, bool_decide (CombinedView.cursor_target s content = Some (col, row)))) as Hflag.
  { intros [ch f] Hf. simpl in *. subst. by case_bool_decide. }
  destruct (Nat.ltb_spec row content) as [Hr|Hr].
  - rewrite (proj2 (Nat.eqb_neq row _)) by lia. rewrite !(proj2 (Nat.leb_le 0 _)) by lia. simpl.
    destruct (new_lines s v !! row) as [l|] eqn:El; [|apply lookup_ge_None in El; lia]. simpl.
    destruct (Utf8.as_bytes l !! col); by rewrite Hflag.
  - rewrite !(proj2 (Nat.leb_le 0 _)) by lia. destruct (Nat.eqb_spec row (rows (CombinedView.console v) - 1)) as [->|Hne]; simpl.
    + rewrite (proj2 (lookup_ge_None (new_lines s v) _)) by lia.
      destruct (Utf8.as_bytes (EditorView.render_status s) !! col); by rewrite Hflag.
    + rewrite (proj2 (lookup_ge_None (new_lines s v) _)) by lia. by rewrite Hflag.
Qed.

(** The screen is as the cache says. *)
Record cached (v : CombinedView.t) : Prop := {
  ca_valid : EditorRenderCache.valid (CombinedView.editor_cache v) = true;
  ca_cols : EditorRenderCache.cols (CombinedView.editor_cache v) = cols (CombinedView.console v);
  ca_rows : EditorRenderCache.rows (CombinedView.editor_cache v) = rows (CombinedView.console v);
  ca_length : length (EditorRenderCache.lines (CombinedView.editor_cache v))
              = rows (CombinedView.console v) - CombinedView.reserved_lines v;
  ca_lines : Forall (line_ok (cols (CombinedView.console v))) (EditorRenderCache.lines (CombinedView.editor_cache v));
  ca_cursor col row : EditorRenderCache.cursor (CombinedView.editor_cache v) = Some (col, row) →
    row < rows (CombinedView.console v) - CombinedView.reserved_lines v;
  ca_shows : shows (CombinedView.console v)
    (screen (rows (CombinedView.console v) - CombinedView.reserved_lines v) (rows (CombinedView.console v))
       (EditorRenderCache.lines (CombinedView.editor_cache v)) (EditorRenderCache.status (CombinedView.editor_cache v))
       (EditorRenderCache.cursor (CombinedView.editor_cache v)))
}.
(** Where the incremental redraw is exact: the new status is not shorter than the old one, and the
    cursor moves or stays on a line that does not change. *)
Record redrawable (s : Vi.EditorState.t) (v : CombinedView.t) : Prop := {
  re_status : Str.len (EditorRenderCache.status (CombinedView.editor_cache v)) ≤ Str.len (EditorView.render_status s);
  re_cursor col row :
    EditorRenderCache.cursor (CombinedView.editor_cache v) = Some (col, row) →
    CombinedView.cursor_target s (rows (CombinedView.console v) - CombinedView.reserved_lines v) = Some (col, row) →
    row_text (EditorRenderCache.lines (CombinedView.editor_cache v)) row = row_text (new_lines s v) row
}.
Lemma as_bytes_len s : length (Utf8.as_bytes s) = Str.len s.
Proof.
  induction s as [|ch s IH]; [done|]. change (Utf8.as_bytes (ch :: s)) with (Utf8.encode ch ++ Utf8.as_bytes s).
  rewrite length_app, IH. cbn [Str.len]. f_equal. unfold Utf8.encode, Str.len_utf8. by repeat destruct (_ <? _)%N.
Qed.
(** The status line, when it is drawn and when it is not. *)
Lemma status_part old new c g (draw : bool) :
  shows c g → 10%N ∉ new → 0 < rows c → 0 < cols c → Str.len old ≤ Str.len new → (draw = false → new = old) →
  (∀ col, col < cols c → g col (rows c - 1) = (cell old col, false)) →
  let c' := if draw then (draw_text_at 0 (rows c - 1) new c).2
                         <| perf ::= λ p, p <| RenderPerfStats.status_redraws ::= N.succ |> |> else c in
  kept c c' ∧ shows c' (λ col row, if row =? rows c - 1 then (cell new col, false) else g col row).
Proof.
  intros Hs Hnl Hr Hc Hlen Hd Hg. cbv zeta. destruct draw.
  - destruct (status_shows new c g Hs Hnl Hr Hc) as [K S]. split; [etrans; [exact K|apply kept_perf]|]. apply perf_shows.
    eapply shows_ext; [exact S|]. intros col row Hcol _. rewrite (ke_cols _ _ K) in Hcol. unfold put_row.
    destruct (Nat.eqb_spec row (rows c - 1)) as [->|]; simpl; [|done]. rewrite ?(proj2 (Nat.leb_le 0 _)), ?Nat.sub_0_r by lia.
    unfold cell at 1, cursor_cell_byte. destruct (Utf8.as_bytes new !! col) eqn:E; [done|]. rewrite Hg by done. simpl.
    unfold cell, cursor_cell_byte. apply lookup_ge_None in E. rewrite as_bytes_len in E.
    by rewrite (proj2 (lookup_ge_None (Utf8.as_bytes old) col)) by (rewrite as_bytes_len; lia).
  - split; [done|]. eapply shows_ext; [done|]. intros col row Hcol _. destruct (Nat.eqb_spec row (rows c - 1)) as [->|]; [|done].
    rewrite Hg by done. by rewrite Hd.
Qed.
(** The cursor: taken away from its old place and drawn at the new one. *)
Lemma cursor_part old target lines content c g :
  shows c g → content ≤ rows c → length lines = content →
  (∀ col row, old = Some (col, row) → row < content) → (∀ col row, target = Some (col, row) → row < content) →
  (∀ col row, col < cols c → row < content → (g col row).1 = cell (row_text lines row) col) →
  (∀ col row, col < cols c → row < rows c → (g col row).2 = true → old = Some (col, row)) →
  (∀ col row, old = Some (col, row) → target = Some (col, row) → col < cols c → (g col row).2 = true) →
  let moved := negb (bool_decide (old = target)) in
  let c1 := match (if moved then old else None) with
            | Some (oc, orow) =>
                if orow <? content then (draw_char_at oc orow (cursor_cell_byte (default (str "~") (lines !! orow)) oc) c).2 else c
            | None => c
            end in
  let c2 := if moved then CombinedView.draw_cursor_at target c1 else c1 in
  kept c c2 ∧ shows c2 (λ col row, ((g col row).1, bool_decide (target = Some (col, row)))).
Proof.
  intros Hs Hcont Hlen Hold Htar Hch Hflag Hkeep. cbv zeta. case_bool_decide as E; simpl.
  { split; [done|]. subst target. eapply shows_ext; [done|]. intros col row Hcol Hrow.
    destruct (g col row) as [ch f] eqn:Eg. simpl. f_equal. case_bool_decide as Ec.
    - pose proof (Hkeep col row Ec Ec Hcol) as Hf. by rewrite Eg in Hf.
    - destruct f; [|done]. exfalso. apply Ec. apply (Hflag col row Hcol Hrow). by rewrite Eg. }
  assert (∃ c1, match old with
                | Some (oc, orow) =>
                    if orow <? content then (draw_char_at oc orow (cursor_cell_byte (default (str "~") (lines !! orow)) oc) c).2 else c
                | None => c
                end = c1 ∧ kept c c1 ∧ shows c1 (λ col row, ((g col row).1, false))) as (c1 & -> & K1 & S1).
  { destruct old as [[oc orow]|].
    - pose proof (Hold oc orow eq_refl) as Ho. rewrite (proj2 (Nat.ltb_lt _ _) Ho). eexists. split; [done|].
      fold (row_text lines orow). fold (cell (row_text lines orow) oc). destruct (Nat.lt_ge_cases oc (cols c)) as [Hlt|Hge].
      + destruct (draw_char_shows oc orow (cell (row_text lines orow) oc) c g Hs Hlt) as [K S]; [lia|]. split; [done|].
        eapply shows_ext; [done|]. intros col row Hcol Hrow. rewrite (ke_cols _ _ K) in Hcol. rewrite (ke_rows _ _ K) in Hrow.
        unfold set_cell. destruct (Nat.eqb_spec col oc) as [->|Hn]; simpl; [destruct (Nat.eqb_spec row orow) as [->|Hn]; simpl|].
        * by rewrite Hch.
        * destruct (g oc row) as [ch f] eqn:Eg. simpl. f_equal. destruct f; [|done]. exfalso.
          assert (Some (oc, orow) = Some (oc, row)) as [= ?]; [|done]. apply Hflag; [done|done|by rewrite Eg].
        * destruct (g col row) as [ch f] eqn:Eg. simpl. f_equal. destruct f; [|done]. exfalso.
          assert (Some (oc, orow) = Some (col, row)) as [= ? ?]; [|done]. apply Hflag; [done|done|by rewrite Eg].
      + unfold draw_char_at. rewrite (proj2 (Nat.leb_le _ _) Hge). simpl. split; [done|]. eapply shows_ext; [done|].
        intros col row Hcol Hrow. destruct (g col row) as [ch f] eqn:Eg. simpl. f_equal. destruct f; [|done]. exfalso.
        assert (Some (oc, orow) = Some (col, row)) as [= -> ->]; [|lia]. apply Hflag; [done|done|by rewrite Eg].
    - eexists. split; [done|]. split; [done|]. eapply shows_ext; [done|]. intros col row Hcol Hrow.
      destruct (g col row) as [ch f] eqn:Eg. simpl. f_equal. destruct f; [|done]. exfalso.
      assert (None = Some (col, row)) as [=]. apply Hflag; [done|done|by rewrite Eg]. }
  destruct (cursor_shows target c1 _ S1) as [K2 S2].
  { intros col row Ht. rewrite (ke_rows _ _ K1). apply Htar in Ht. lia. }
  split; [by etrans|]. eapply shows_ext; [done|]. intros col row _ _. simpl. by case_bool_decide.
Qed.

Lemma redraw_changes_shows s ticks v :
  cached v → drawable s v → redrawable s v →
  ∃ v', CombinedView.redraw_changes s ticks v = Return v' ∧
    kept (CombinedView.console v) (CombinedView.console v') ∧ shows (CombinedView.console v') (editor_screen s v).
Proof.
  intros [_ _ _ Hlen Hlines Hcur Hs] [Hcont Hcols Hnew Hstat Hov] [Rst Rcur].
  unfold CombinedView.redraw_changes. rewrite Hov. fold (new_lines s v).
  set (content := rows (CombinedView.console v) - CombinedView.reserved_lines v) in *.
  set (cache := CombinedView.editor_cache v) in *. set (c := CombinedView.console v) in *.
  pose proof (proj1 (kept_perf (λ p, p <| RenderPerfStats.allocations ::= N.add (len (new_lines s v)) |>) c)) as K0.
  apply (perf_shows (λ p, p <| RenderPerfStats.allocations ::= N.add (len (new_lines s v)) |>)) in Hs.
  set (c0 := c <| perf ::= _ |>) in *. clearbody c0.
  destruct (plan_shows content (EditorRenderCache.lines cache) (new_lines s v) content c0 _ Hs) as (plan & E & K1 & g1 & S1 & C1);
    rewrite ?(ke_rows _ _ K0), ?(ke_cols _ _ K0); [lia|lia|done|apply new_lines_length|done|done| |].
  { intros col row _ Hrow. unfold screen. by rewrite (proj2 (Nat.ltb_lt _ _) Hrow). }
  rewrite (ke_cols _ _ K0) in E. rewrite E. cbn [mbind outcome_bind]. unfold changed in C1.
  rewrite (ke_cols _ _ K0), (ke_rows _ _ K0) in C1.
  set (c1 := foldl _ c0 plan) in *. clearbody c1. assert (kept c c1) as K01 by by etrans.
  set (upd := λ p : RenderPerfStats.t, p <| RenderPerfStats.dirty_lines ::= N.add (len plan) |>
                                     <| RenderPerfStats.dirty_spans ::= N.add (len plan) |>).
  pose proof (proj1 (kept_perf upd c1)) as K2. apply (perf_shows upd) in S1.
  set (c2 := c1 <| perf ::= upd |>) in *. clearbody c2. assert (kept c c2) as K02 by by etrans.
  unfold CombinedView.status_line. rewrite app_nil_r. simpl (false || _).
  destruct (status_part (EditorRenderCache.status cache) (EditorView.render_status s) c2 g1
    (negb (bool_decide (EditorView.render_status s = EditorRenderCache.status cache))) S1 Hstat) as [K3 S3].
  { rewrite (ke_rows _ _ K02). lia. } { by rewrite (ke_cols _ _ K02). } { done. }
  { intros Hd. apply negb_false_iff in Hd. by apply bool_decide_eq_true in Hd. }
  { rewrite (ke_cols _ _ K02), (ke_rows _ _ K02). intros col Hcol. specialize (C1 col (rows c - 1) Hcol ltac:(lia)).
    rewrite (proj2 (Nat.ltb_ge _ _)) in C1 by lia. rewrite C1. unfold screen.
    rewrite (proj2 (Nat.ltb_ge _ _)), Nat.eqb_refl by lia. f_equal. apply bool_decide_eq_false. intros Ec%Hcur. lia. }
  rewrite (ke_rows _ _ K02) in K3, S3. cbv zeta in K3, S3.
  set (c3 := if negb _ then _ else c2) in *. clearbody c3. assert (kept c c3) as K03 by by etrans.
  set (g3 := λ col row, if row =? rows c - 1 then _ else g1 col row) in S3.
  assert (∀ col row, col < cols c → row < content → g3 col row = g1 col row) as G3.
  { intros col row _ Hrow. unfold g3. by rewrite (proj2 (Nat.eqb_neq _ _)) by lia. }
  destruct (cursor_part (EditorRenderCache.cursor cache) (CombinedView.cursor_target s content) (new_lines s v) content c3 g3 S3)
    as [K4 S4]; rewrite ?(ke_rows _ _ K03), ?(ke_cols _ _ K03).
  { lia. } { apply new_lines_length. } { exact Hcur. } { intros col row. apply target_row. }
  { intros col row Hcol Hrow. rewrite G3 by done. specialize (C1 col row Hcol ltac:(lia)).
    rewrite (proj2 (Nat.ltb_lt _ _) Hrow) in C1. apply C1. }
  { intros col row Hcol Hrow. unfold g3. destruct (Nat.eqb_spec row (rows c - 1)) as [->|Hne]; [done|].
    specialize (C1 col row Hcol Hrow). destruct (Nat.ltb_spec row content) as [Hr|Hr].
    - destruct C1 as (_ & [Hf|Hf] & _); rewrite Hf; [|done]. unfold screen. simpl. by intros Hb%bool_decide_eq_true.
    - rewrite C1. unfold screen. simpl. by intros Hb%bool_decide_eq_true. }
  { intros col row Ho Ht Hcol. pose proof (Hcur col row Ho) as Hrow. rewrite G3 by done.
    specialize (C1 col row Hcol ltac:(lia)). rewrite (proj2 (Nat.ltb_lt _ _) Hrow) in C1. destruct C1 as (_ & _ & Hsame).
    rewrite Hsame by (by apply (Rcur col row)). unfold screen. simpl. by apply bool_decide_eq_true. }
  cbv zeta in K4, S4. set (c4 := if negb _ then _ else _) in *. clearbody c4.
  destruct (finish_shows ticks c4 _ S4) as [K5 S5]. eexists. split; [done|]. simpl. split; [by etrans; [exact K03|etrans]|].
  eapply shows_ext; [exact S5|]. intros col row Hcol Hrow. assert (kept c c4) as K04 by by etrans.
  rewrite (ke_rows _ _ K5), (ke_rows _ _ K04) in Hrow. rewrite (ke_cols _ _ K5), (ke_cols _ _ K04) in Hcol.
  unfold editor_screen. fold c. change (rows c - CombinedView.reserved_lines v) with content. unfold screen. simpl. f_equal.
  destruct (Nat.ltb_spec row content) as [Hr|Hr].
  - rewrite G3 by done. specialize (C1 col row Hcol ltac:(lia)). rewrite (proj2 (Nat.ltb_lt _ _) Hr) in C1. exact (proj1 C1).
  - unfold g3. destruct (Nat.eqb_spec row (rows c - 1)) as [->|Hne]; [done|]. specialize (C1 col row Hcol ltac:(lia)).
    rewrite (proj2 (Nat.ltb_ge _ _)) in C1 by lia. rewrite C1. unfold screen. simpl.
    rewrite (proj2 (Nat.ltb_ge _ _)) by lia. by rewrite (proj2 (Nat.eqb_neq _ _)) by done.
Qed.
Lemma shows_pixels c c' g x y :
  shows c g → shows c' g → fg_of c = fg_of c' → bg_of c = bg_of c' → cols c = cols c' → rows c = rows c' →
  x < cols c * FONT_WIDTH → y < rows c * FONT_HEIGHT → px x y c = px x y c'.
Proof.
  intros [_ H1] [_ H2] Ef Eb Ec Er Hx Hy.
  rewrite (Nat.div_mod x FONT_WIDTH), (Nat.div_mod y FONT_HEIGHT) by done. rewrite (Nat.mul_comm FONT_WIDTH), (Nat.mul_comm FONT_HEIGHT).
  assert (x / FONT_WIDTH < cols c) by (apply Nat.Div0.div_lt_upper_bound; lia).
  assert (y / FONT_HEIGHT < rows c) by (apply Nat.Div0.div_lt_upper_bound; lia).
  pose proof (Nat.mod_upper_bound x FONT_WIDTH ltac:(done)). pose proof (Nat.mod_upper_bound y FONT_HEIGHT ltac:(done)).
  rewrite H1, H2, Ef, Eb by (done || lia). done.
Qed.

(** ** Frames *)

(** A view between two frames: its cache, when it is valid, describes the screen. *)
Record synced (v : CombinedView.t) : Prop := {
  sy_ok : fb_ok (CombinedView.console v);
  sy_cached : EditorRenderCache.valid (CombinedView.editor_cache v) = true → cached v
}.
(** What a frame leaves: the screen of the editor, and a cache that says so. *)
Definition framed (s : Vi.EditorState.t) (v v' : CombinedView.t) : Prop :=
  kept (CombinedView.console v) (CombinedView.console v') ∧ shows (CombinedView.console v') (editor_screen s v) ∧
  CombinedView.reserved_lines v' = CombinedView.reserved_lines v ∧
  CombinedView.editor_cache v' = EditorRenderCache.mk (new_lines s v) (EditorView.render_status s)
    (CombinedView.cursor_target s (rows (CombinedView.console v) - CombinedView.reserved_lines v))
    (cols (CombinedView.console v)) (rows (CombinedView.console v)) true.
Lemma framed_synced s v v' : drawable s v → framed s v v' → synced v'.
Proof.
  intros [_ _ Hlines _ _] (K & S & Er & Ec). split; [apply S|]. intros _.
  pose proof (ke_rows _ _ K) as Kr. pose proof (ke_cols _ _ K) as Kc.
  split; rewrite ?Ec, ?Er, ?Kr, ?Kc; try done; [apply new_lines_length|intros col row; apply target_row].
Qed.
Lemma redraw_all_frames s ticks v :
  fb_ok (CombinedView.console v) → drawable s v → framed s v (CombinedView.redraw_all s ticks v).
Proof.
  intros Ho Hd. destruct (redraw_all_shows s ticks v Ho Hd) as [K S]. split; [done|]. split; [done|]. split; [done|].
  unfold CombinedView.redraw_all. cbn -[clear draw_text_at]. unfold CombinedView.status_line. rewrite (dr_overlay _ _ Hd), app_nil_r.
  destruct (clear_shows _ Ho) as [K0 _]. by rewrite (ke_rows _ _ K0), (ke_cols _ _ K0).
Qed.
Lemma redraw_changes_frames s ticks v :
  cached v → drawable s v → redrawable s v → ∃ v', CombinedView.redraw_changes s ticks v = Return v' ∧ framed s v v'.
Proof.
  intros Hc Hd Hr. destruct (redraw_changes_shows s ticks v Hc Hd Hr) as (v' & E & K & S). exists v'. split; [done|].
  split; [done|]. split; [done|]. revert E. unfold CombinedView.redraw_changes.
  destruct (CombinedView.plan_lines _ _ _ _) as [plan| |]; cbn [mbind outcome_bind]; [|done|done]. intros [= <-].
  unfold CombinedView.status_line. rewrite (dr_overlay _ _ Hd), app_nil_r. done.
Qed.

(** C22: A frame of the editor on the frame-buffer console is exact: when the cache describes the screen,
    the lines of the text are ASCII and fit, the status does not get shorter, and the cursor does not
    stay on a line that changes, the incremental redraw returns, every pixel of the cells is the pixel a
    redraw of everything from a cleared screen leaves, and the cache describes the screen again. *)
Theorem editor_redraw_is_exact s start ticks v :
  synced v → drawable s v → (EditorRenderCache.valid (CombinedView.editor_cache v) = true → redrawable s v) →
  ∃ v', CombinedView.render_editor_with_ticks s start ticks v = Return v' ∧ synced v' ∧
    ∀ x y, x < cols (CombinedView.console v) * FONT_WIDTH → y < rows (CombinedView.console v) * FONT_HEIGHT →
      px x y (CombinedView.console v') = px x y (CombinedView.console (CombinedView.redraw_all s ticks v)).
Proof.
  intros [Ho Hc] Hd Hr. unfold CombinedView.render_editor_with_ticks. cbv zeta.
  set (c0 := match start with Some e => _ | None => _ end).
  assert (∃ f, c0 = (CombinedView.console v) <| perf ::= f |>) as [f Ef].
  { unfold c0. destruct start; [|by eexists]. exists (λ p, RenderPerfStats.reset_frame p <| RenderPerfStats.frame_start_ticks := Some n |>). done. }
  clearbody c0. set (v0 := v <| CombinedView.console := c0 |>).
  assert (synced v0 ∧ drawable s v0 ∧ (EditorRenderCache.valid (CombinedView.editor_cache v) = true → redrawable s v0)
    ∧ editor_screen s v0 = editor_screen s v) as ([Ho0 Hc0] & Hd0 & Hr0 & Es).
  { unfold v0. rewrite Ef. split; [split|split; [|split]].
    - by destruct Ho.
    - intros Hv. destruct (Hc Hv). split; try done. by apply perf_shows.
    - by destruct Hd.
    - intros Hv. by destruct (Hr Hv).
    - done. }
  assert (∃ v', (if negb (EditorRenderCache.valid (CombinedView.editor_cache v0)) || negb (EditorRenderCache.cols (CombinedView.editor_cache v0) =? cols c0)
     || negb (EditorRenderCache.rows (CombinedView.editor_cache v0) =? rows c0)
     then Return (CombinedView.redraw_all s ticks v0) else CombinedView.redraw_changes s ticks v0) = Return v' ∧ framed s v0 v') as (v' & E & F).
  { destruct (negb (EditorRenderCache.valid _)) eqn:Ev; simpl; [eexists; split; [done|by apply redraw_all_frames]|].
    apply negb_false_iff in Ev. destruct (negb _ || negb _); [eexists; split; [done|by apply redraw_all_frames]|].
    apply redraw_changes_frames; [by apply Hc0|done|by apply Hr0]. }
  exists v'. split; [done|]. split; [by eapply framed_synced|]. intros x y Hx Hy.
  destruct (redraw_all_frames s ticks v Ho Hd) as (Ka & Sa & _). destruct F as (K & S & _). rewrite Es in S.
  assert (kept (CombinedView.console v) (CombinedView.console v')) as K'.
  { etrans; [|exact K]. unfold v0. rewrite Ef. apply kept_perf. }
  destruct (kept_colors _ _ Ka) as [Fa Ba], (kept_colors _ _ K') as [F' B'].
  eapply shows_pixels; [exact S|exact Sa|..]; rewrite ?(ke_cols _ _ K'), ?(ke_rows _ _ K'), ?(ke_cols _ _ Ka), ?(ke_rows _ _ Ka); congruence || done.
Qed.
End editor.
End FbSpec.

Module FbExample.
Import Vi Font ConsoleFb FbSpec.

(** Two columns and three rows. *)
Definition screen_info : FramebufferInfo.t := FramebufferInfo.mk 16 48 16 PixelFormat.Rgb32.
Definition blank : CombinedView.t :=
  CombinedView.new (ConsoleFb.new (Framebuffer.mk screen_info (replicate (FramebufferInfo.buffer_size screen_info) 0%N))) 1.
Definition typed (text : string) : EditorState.t := EditorState.load_content (str text) EditorState.new.
Definition at_col (col : nat) (s : EditorState.t) : EditorState.t :=
  s <| EditorState.cursor ::= Cursor.set_col col |>.
Definition first_frame (s : EditorState.t) : CombinedView.t := CombinedView.redraw_all s None blank.

Lemma blank_ok : fb_ok (CombinedView.console blank).
Proof. split; apply Nat.leb_le; vm_compute; reflexivity. Qed.
Lemma typed_drawable v s :
  rows (CombinedView.console v) = 3 → cols (CombinedView.console v) = 2 → CombinedView.reserved_lines v = 1 →
  CombinedView.perf_overlay_enabled v = false → bool_decide (Forall (line_ok 2) (build_editor_lines s 2)) = true →
  bool_decide (10%N ∉ EditorView.render_status s) = true → drawable s v.
Proof.
  intros Er Ec El Eo H1%bool_decide_eq_true H2%bool_decide_eq_true.
  split; unfold new_lines; rewrite ?Er, ?Ec, ?El; [lia|lia|done|done|done].
Qed.
(** The state of a witness: the text grows and the cursor moves with it. *)
Lemma editor_redraw_is_exact_witness :
  let v := first_frame (typed "a") in let s := at_col 1 (typed "ab") in
  EditorRenderCache.valid (CombinedView.editor_cache v) = true ∧
  ∃ v', CombinedView.render_editor_with_ticks s (Some 1%N) (Some 5%N) v = Return v' ∧ synced v' ∧
    ∀ x y, x < cols (CombinedView.console v) * FONT_WIDTH → y < rows (CombinedView.console v) * FONT_HEIGHT →
      px x y (CombinedView.console v') = px x y (CombinedView.console (CombinedView.redraw_all s (Some 5%N) v)).
Proof.
  assert (drawable (typed "a") blank) as Hb by (apply typed_drawable; vm_compute; reflexivity).
  pose proof (redraw_all_frames (typed "a") None blank blank_ok Hb) as F.
  pose proof (framed_synced _ _ _ Hb F) as Hv. fold (first_frame (typed "a")) in F, Hv.
  cbv zeta. split; [reflexivity|]. set (v := first_frame (typed "a")) in *.
  assert (CombinedView.perf_overlay_enabled v = false) as Eo by reflexivity. clearbody v. destruct F as (K & _ & El & Ec).
  pose proof (ke_rows _ _ K) as Kr. pose proof (ke_cols _ _ K) as Kc.
  apply editor_redraw_is_exact; [exact Hv| |].
  - apply typed_drawable; rewrite ?Kr, ?Kc, ?El; exact Eo || (vm_compute; reflexivity).
  - intros _. split.
    + rewrite Ec. vm_compute. lia.
    + intros col row. rewrite Ec, Kr, El. vm_compute. congruence.
Defined.

(** ** Where the incremental redraw differs *)

Definition redrawn (s : EditorState.t) (v : CombinedView.t) : CombinedView.t :=
  match CombinedView.render_editor s v with Return v' => v' | _ => v end.
Definition pixel (x y : nat) (v : CombinedView.t) : list N := px x y (CombinedView.console v).

(** The cursor is not drawn again when it stays where it is and the line under it changes. *)
Lemma staying_cursor_vanishes :
  let v := first_frame (typed "ab") in
  pixel 0 15 v = [255; 255; 255; 0]%N ∧ pixel 0 15 (redrawn (typed "b") v) = [0; 0; 0; 0]%N ∧
  pixel 0 15 (first_frame (typed "b")) = [255; 255; 255; 0]%N.
Proof. vm_compute. split_and!; reflexivity. Qed.

(** The tail of a longer status stays on the screen. *)
Definition wide_info : FramebufferInfo.t := FramebufferInfo.mk 96 16 96 PixelFormat.Rgb32.
Definition wide : CombinedView.t :=
  CombinedView.new (ConsoleFb.new (Framebuffer.mk wide_info (replicate (FramebufferInfo.buffer_size wide_info) 0%N))) 1.
Definition saying (m : string) : EditorState.t := EditorState.say m EditorState.new.
Definition lit (v : CombinedView.t) : nat :=
  length (filter (λ p : list N, p ≠ [0; 0; 0; 0]%N) (x ← seq 88 8; (λ y, pixel x y v) <$> seq 0 16)).
Lemma shorter_status_leaves_tail :
  lit (redrawn (saying "a") (CombinedView.redraw_all (saying "ab") None wide)) ≠ 0 ∧
  lit (CombinedView.redraw_all (saying "a") None wide) = 0.
Proof. vm_compute. split; [discriminate|reflexivity]. Qed.

(** A difference inside a character of several bytes: the slice is not between characters. *)
Lemma multibyte_diff_panics : diff_line_update [233%N] [232%N] 80 0 = Panic.
Proof. reflexivity. Qed.

(** A full redraw wraps a long line into the next row, the incremental one cuts it. *)
Lemma long_line_wraps_or_is_cut :
  let text (line : string) := str line ++ [10; 10; 113]%N in
  let s := EditorState.load_content (text "abX") EditorState.new in
  let v := first_frame (EditorState.load_content (text "ab") EditorState.new) in
  let cell_lit v := length (filter (λ p : list N, p ≠ [0; 0; 0; 0]%N) (x ← seq 0 8; (λ y, pixel x y v) <$> seq 16 16)) in
  cell_lit (first_frame s) ≠ 0 ∧ cell_lit (redrawn s v) = 0.
Proof. vm_compute. split; [discriminate|reflexivity]. Qed.
End FbExample.
