(* ===== verification/BareFs.v ===== *)
(** * The file system of the bare-metal kernel

    [kernel_bootstrap/src/bare_metal_storage.rs] and [bare_metal_editor_io.rs]: the choice of the disk,
    files by name in the root directory of the persistent file system, and the documents of the editor.
    What the workspace and the editor use of it is the class [BareFiles].

    The second part shows that these files are a map. *)

From S2P Require Import Prelude CoreTypes Debug Storage BlockStore Editor Text BlockProps.
Open Scope string_scope.
Open Scope list_scope.
Open Scope N_scope.

(** The names of files are strings of UTF-8 bytes. *)
Definition name_of (s : Str.t) : string := String.string_of_list_ascii (Ascii.ascii_of_N <$> Utf8.as_bytes s).
Definition text_of (s : string) : Str.t := default [] (Utf8.from_utf8 (Utf8.bytes s)).

(** ** The disk *)

Module StorageBackend.
(* kernel_bootstrap/src/bare_metal_storage.rs:32-38 StorageBackendKind *)
Inductive kind_t := KindRamDisk | KindVirtioBlkMmio.
#[global] Instance kind_eq_dec : EqDecision kind_t.
Proof. solve_decision. Defined.
Section with_virtio.
Context {V : Type} `{BlockDevice V}.
(* kernel_bootstrap/src/bare_metal_storage.rs:40-44 StorageBackend *)
Inductive t := Ram (device : RamDisk.t) | VirtioBlk (device : V).
(* kernel_bootstrap/src/bare_metal_storage.rs:47-53 StorageBackend::kind *)
Definition kind (b : t) : kind_t := match b with Ram _ => KindRamDisk | VirtioBlk _ => KindVirtioBlkMmio end.
(** An operation of the device inside. *)
Definition on {A} (f : RamDisk.t → A * RamDisk.t) (g : V → A * V) (b : t) : A * t :=
  match b with
  | Ram d => let '(r, d) := f d in (r, Ram d)
  | VirtioBlk d => let '(r, d) := g d in (r, VirtioBlk d)
  end.
(* kernel_bootstrap/src/bare_metal_storage.rs:56-88 BlockDevice for StorageBackend *)
#[global] Instance block_device : BlockDevice t := {|
  block_count b := match b with Ram d => block_count d | VirtioBlk d => block_count d end;
  read_block i buffer := on (read_block i buffer) (read_block i buffer);
  write_block i buffer := on (write_block i buffer) (write_block i buffer);
  flush := on flush flush
|}.
(* kernel_bootstrap/src/bare_metal_storage.rs:16-16 RAM_DISK_BLOCKS *)
Definition RAM_DISK_BLOCKS : N := 32.
(* kernel_bootstrap/src/bare_metal_storage.rs:19-19 VIRTIO_MMIO_REGIONS *)
Definition VIRTIO_MMIO_REGIONS : list N := [0x0A000000; 0xFEB00000].
(* kernel_bootstrap/src/bare_metal_storage.rs:21-21 VIRTIO_MMIO_SLOT_STRIDE *)
Definition VIRTIO_MMIO_SLOT_STRIDE : N := 0x200.
(* kernel_bootstrap/src/bare_metal_storage.rs:23-23 VIRTIO_MMIO_SLOTS_PER_REGION *)
Definition VIRTIO_MMIO_SLOTS_PER_REGION : nat := 8.
(** The physical addresses that are tried, in order. *)
(* kernel_bootstrap/src/bare_metal_storage.rs:230-235 try_create_virtio_backend (the addresses) *)
Definition slots : list N :=
  region ← VIRTIO_MMIO_REGIONS; slot ← seq 0 VIRTIO_MMIO_SLOTS_PER_REGION;
  [region + N.of_nat slot * VIRTIO_MMIO_SLOT_STRIDE].
(** [open] is [VirtioBlkDevice::new] at an address, on fresh queue memory; [m] is the machine. *)
Context {M : Type} (open : N → M → outcome (option V * M)).
Fixpoint probe (l : list N) (hhdm_offset : N) (m : M) : outcome (option V * M) :=
  match l with
  | [] => Return (None, m)
  | phys_base :: l =>
      '(device, m) ← open ((hhdm_offset + phys_base) mod 2 ^ 64) m;
      match device with
      | Some d => if 0 <? block_count d then Return (Some d, m) else probe l hhdm_offset m
      | None => probe l hhdm_offset m
      end
  end.
(* kernel_bootstrap/src/bare_metal_storage.rs:226-250 try_create_virtio_backend *)
Definition try_create_virtio_backend (hhdm_offset : option N) (m : M) : outcome (option V * M) :=
  match hhdm_offset with None => Return (None, m) | Some offset => probe slots offset m end.
(* kernel_bootstrap/src/bare_metal_storage.rs:219-224 create_storage_backend *)
Definition create_storage_backend (hhdm_offset : option N) (m : M) : outcome (t * M) :=
  '(device, m) ← try_create_virtio_backend hhdm_offset m;
  Return (match device with Some d => VirtioBlk d | None => Ram (RamDisk.new RAM_DISK_BLOCKS) end, m).
End with_virtio.
Arguments t V : clear implicits.
End StorageBackend.

(** ** Files by name *)

(** What the editor and the workspace use of the file system. *)
Class BareFiles (F : Type) := {
  read_file_by_name : Str.t → F → outcome (result (list N) TransactionError.t * F);
  write_file_by_name : Str.t → list N → F → outcome (result ObjectId.t TransactionError.t * F);
  list_files : F → outcome (result (list Str.t) TransactionError.t * F);
  entry_id : Str.t → F → outcome (result (option ObjectId.t) TransactionError.t * F)
}.

(** The random identifiers, in the order they are drawn. *)
Class Identifiers := { uuids : nat → Uuid }.

Module BareMetalFilesystem.
Section with_device.
Context {D : Type} `{BlockDevice D} `{StorageJson} `{UuidFormat} `{Identifiers}.

(** [drawn] counts the identifiers an operation has set aside so far. *)
(* kernel_bootstrap/src/bare_metal_storage.rs:90-95 BareMetalFilesystem *)
Record t := mk {
  fs : PersistentFilesystem.t D;
  root_id : ObjectId.t;
  backend_kind : StorageBackend.kind_t;
  drawn : nat
}.
#[global] Instance rebuild_t : Rebuild t := λ f, mk (fs f) (root_id f) (backend_kind f) (drawn f).
Definition tx (n : nat) : TransactionId.t := TransactionId.mk (uuids n).
Definition two (n : nat) : PersistentFilesystem.draw := (tx n, VersionId.from_uuid (uuids (S n))).
Definition object (n : nat) : ObjectId.t := ObjectId.from_uuid (uuids n).
(** An operation of the file system inside, with [k] identifiers set aside. *)
Definition on_fs {A} (k : nat)
    (g : nat → PersistentFilesystem.t D → outcome (result A TransactionError.t * PersistentFilesystem.t D)) (f : t)
    : outcome (result A TransactionError.t * t) :=
  '(r, p) ← g (drawn f) (fs f); Return (r, f <| fs := p |> <| drawn ::= Nat.add k |>).
(* kernel_bootstrap/src/bare_metal_storage.rs:103-118 BareMetalFilesystem::new_with_hhdm *)
Definition new_with_hhdm (disk : D) (kind : StorageBackend.kind_t) (n : nat) : outcome (result t TransactionError.t) :=
  r ← PersistentFilesystem.format (two (S n)) (object n) disk "system";
  Return (map_ok (λ p, mk p (PersistentFilesystem.root_dir_id p) kind (n + 3)) r).
(* kernel_bootstrap/src/bare_metal_storage.rs:131-137 BareMetalFilesystem::backend_name *)
Definition backend_name (f : t) : string :=
  match backend_kind f with
  | StorageBackend.KindRamDisk => "ramdisk"
  | StorageBackend.KindVirtioBlkMmio => "virtio-blk-mmio"
  end.
(* kernel_bootstrap/src/bare_metal_storage.rs:139-154 BareMetalFilesystem::create_file *)
Definition create_file (name : Str.t) (content : list N) (f : t) : outcome (result ObjectId.t TransactionError.t * t) :=
  try! file_id, f := on_fs 3 (λ n, PersistentFilesystem.write_file (object n) (two (S n)) content) f in
  try! _, f := on_fs 3 (λ n, PersistentFilesystem.link (tx n) (two (S n)) (name_of name) (root_id f) file_id ObjectKind.Blob 0) f in
  Return (Ok file_id, f).
(* kernel_bootstrap/src/bare_metal_storage.rs:156-163 BareMetalFilesystem::read_file_by_name *)
Definition read_by_name (name : Str.t) (f : t) : outcome (result (list N) TransactionError.t * t) :=
  try! dir, f := on_fs 1 (λ n, PersistentFilesystem.read_directory (tx n) (root_id f)) f in
  match PersistentDirectory.get_entry (name_of name) dir with
  | None => Return (Err (TransactionError.StorageError "File not found"), f)
  | Some entry => on_fs 1 (λ n, PersistentFilesystem.read_file (tx n) (DirectoryEntry.object_id entry)) f
  end.
(** The outcome of the unlink is dropped. *)
(* kernel_bootstrap/src/bare_metal_storage.rs:165-176 BareMetalFilesystem::write_file_by_name *)
Definition write_by_name (name : Str.t) (content : list N) (f : t) : outcome (result ObjectId.t TransactionError.t * t) :=
  '(_, f) ← on_fs 3 (λ n, PersistentFilesystem.unlink (tx n) (two (S n)) (name_of name) (root_id f) 0) f;
  create_file name content f.
(* kernel_bootstrap/src/bare_metal_storage.rs:178-182 BareMetalFilesystem::list_files *)
Definition list_names (f : t) : outcome (result (list Str.t) TransactionError.t * t) :=
  try! entries, f := on_fs 1 (λ n, PersistentFilesystem.list_dir (tx n) (root_id f)) f in
  Return (Ok (text_of <$> entries.*1), f).
(* kernel_bootstrap/src/bare_metal_storage.rs:184-188 BareMetalFilesystem::delete_file *)
Definition delete_file (name : Str.t) (f : t) : outcome (result unit TransactionError.t * t) :=
  try! _, f := on_fs 3 (λ n, PersistentFilesystem.unlink (tx n) (two (S n)) (name_of name) (root_id f) 0) f in
  Return (Ok tt, f).
(* kernel_bootstrap/src/bare_metal_storage.rs:190-193 BareMetalFilesystem::read_file *)
Definition read_file (object_id : ObjectId.t) : t → outcome (result (list N) TransactionError.t * t) :=
  on_fs 1 (λ n, PersistentFilesystem.read_file (tx n) object_id).
(** The object that is to be replaced is not looked at. *)
(* kernel_bootstrap/src/bare_metal_storage.rs:195-205 BareMetalFilesystem::write_file *)
Definition write_file (_object_id : ObjectId.t) (content : list N) : t → outcome (result ObjectId.t TransactionError.t * t) :=
  on_fs 3 (λ n, PersistentFilesystem.write_file (object n) (two (S n)) content).
(** The second look into the directory, when a document is opened. *)
(* kernel_bootstrap/src/bare_metal_editor_io.rs:64-66 BareMetalEditorIo::open (the object id) *)
Definition id_by_name (name : Str.t) (f : t) : outcome (result (option ObjectId.t) TransactionError.t * t) :=
  try! dir, f := on_fs 1 (λ n, PersistentFilesystem.read_directory (tx n) (root_id f)) f in
  Return (Ok (DirectoryEntry.object_id <$> PersistentDirectory.get_entry (name_of name) dir), f).
#[global] Instance bare_files : BareFiles t := {|
  read_file_by_name := read_by_name;
  write_file_by_name := write_by_name;
  list_files := list_names;
  entry_id := id_by_name
|}.
End with_device.
Arguments t D : clear implicits.
End BareMetalFilesystem.

(** ** The documents of the editor *)

Module EditorIoError.
(* kernel_bootstrap/src/bare_metal_editor_io.rs:12-18 EditorIoError *)
Inductive t := NotFound | StorageError (message : string) | InvalidUtf8.
Definition debug_transaction (e : TransactionError.t) : string :=
  match e with
  | TransactionError.Conflict m => Debug.tuple1 "Conflict" (Debug.str m)
  | TransactionError.ObjectNotFound m => Debug.tuple1 "ObjectNotFound" (Debug.str m)
  | TransactionError.AlreadyFinalized => "AlreadyFinalized"
  | TransactionError.InvalidOperation m => Debug.tuple1 "InvalidOperation" (Debug.str m)
  | TransactionError.StorageError m => Debug.tuple1 "StorageError" (Debug.str m)
  end.
(* kernel_bootstrap/src/bare_metal_editor_io.rs:20-27 From<TransactionError> for EditorIoError *)
Definition from (e : TransactionError.t) : t :=
  match e with TransactionError.ObjectNotFound _ => NotFound | other => StorageError (debug_transaction other) end.
End EditorIoError.

Module DocumentHandle.
(* kernel_bootstrap/src/bare_metal_editor_io.rs:29-40 DocumentHandle *)
Record t := new { object_id : option ObjectId.t; path : option Str.t }.
End DocumentHandle.

Module BareMetalEditorIo.
Section with_files.
Context {F : Type} `{BareFiles F}.
(* kernel_bootstrap/src/bare_metal_editor_io.rs:42-50 BareMetalEditorIo *)
Record t := new { fs : F }.
(** [?] with the conversion of the error. *)
Definition convert {A} (m : outcome (result A TransactionError.t * F)) : outcome (result A EditorIoError.t * t) :=
  '(r, f) ← m; Return (map_err EditorIoError.from r, new f).
(* kernel_bootstrap/src/bare_metal_editor_io.rs:52-55 BareMetalEditorIo::into_filesystem *)
Definition into_filesystem (io : t) : F := fs io.
(* kernel_bootstrap/src/bare_metal_editor_io.rs:57-70 BareMetalEditorIo::open *)
Definition open (path : Str.t) (io : t) : outcome (result (Str.t * DocumentHandle.t) EditorIoError.t * t) :=
  try! content, io := convert (read_file_by_name path (fs io)) in
  match Utf8.from_utf8 content with
  | None => Return (Err EditorIoError.InvalidUtf8, io)
  | Some content_str =>
      try! entry, io := convert (entry_id path (fs io)) in
      match entry with
      | None => Return (Err EditorIoError.NotFound, io)
      | Some id => Return (Ok (content_str, DocumentHandle.new (Some id) (Some path)), io)
      end
  end.
(* kernel_bootstrap/src/bare_metal_editor_io.rs:72-84 BareMetalEditorIo::save *)
Definition save (handle : DocumentHandle.t) (content : Str.t) (io : t) : outcome (result Str.t EditorIoError.t * t) :=
  match DocumentHandle.path handle with
  | Some path =>
      try! _, io := convert (write_file_by_name path (Utf8.as_bytes content) (fs io)) in
      Return (Ok (Str.of_string "Saved to " ++ path), io)
  | None => Return (Err (EditorIoError.StorageError "No path specified"), io)
  end.
(* kernel_bootstrap/src/bare_metal_editor_io.rs:86-95 BareMetalEditorIo::save_as *)
Definition save_as (path content : Str.t) (io : t) : outcome (result (Str.t * DocumentHandle.t) EditorIoError.t * t) :=
  try! object_id, io := convert (write_file_by_name path (Utf8.as_bytes content) (fs io)) in
  Return (Ok (Str.of_string "Saved as " ++ path, DocumentHandle.new (Some object_id) (Some path)), io).
(* kernel_bootstrap/src/bare_metal_editor_io.rs:97-100 BareMetalEditorIo::new_buffer *)
Definition new_buffer (path : option Str.t) : DocumentHandle.t := DocumentHandle.new None path.
(* kernel_bootstrap/src/bare_metal_editor_io.rs:102-105 BareMetalEditorIo::list_files *)
Definition list_all (io : t) : outcome (result (list Str.t) EditorIoError.t * t) := convert (list_files (fs io)).
End with_files.
Arguments t F : clear implicits.
End BareMetalEditorIo.

(** * The bare-metal files are a map

    The class [BareFilesSpec] says what the workspace relies on: files are a map from names to
    contents, reading reads it, and a write either inserts into it, or fails and at worst loses the
    file that it replaces.  The file system of the bare-metal kernel keeps that promise, for contents
    that are not empty. *)

Open Scope string_scope.
Open Scope list_scope.
Open Scope N_scope.

(** ** The interface *)

(** [stores n f m]: the files are [m], and there is room in the counters for [n] more writes. *)
Class BareFilesSpec (F : Type) `{BareFiles F} := {
  stores : nat → F → gmap string (list N) → Prop;
  stores_weaken n f m : stores (S n) f m → stores n f m;
  read_ok n f m name : stores n f m → ∃ r f',
    read_file_by_name name f = Return (r, f') ∧ stores n f' m ∧
    match m !! name_of name with Some c => r = Ok c | None => is_ok r = false end;
  write_ok n f m name content : stores (S n) f m → content ≠ [] → ∃ r f',
    write_file_by_name name content f = Return (r, f') ∧
    ((is_ok r = true ∧ stores n f' (<[name_of name := content]> m)) ∨
     (is_ok r = false ∧ (stores n f' m ∨ stores n f' (delete (name_of name) m))));
  list_ok n f m : stores n f m → ∃ names f',
    list_files f = Return (Ok (text_of <$> names), f') ∧ stores n f' m ∧
    NoDup names ∧ (∀ name, name ∈ names ↔ is_Some (m !! name));
  entry_ok n f m name : stores n f m → ∃ r f',
    entry_id name f = Return (Ok r, f') ∧ stores n f' m ∧ (is_Some r ↔ is_Some (m !! name_of name))
}.

(** What the directories need of [serde_json]. *)
Class DirectoryJsonSpec `{StorageJson} := {
  directory_roundtrip d b : directory_to_vec d = Some b → directory_from_slice b = Some d ∧ b ≠ []
}.

(** ** The store, as a map from objects to bytes *)

Section store.
Context {D : Type} `{DeviceSpec D} `{StorageJsonSpec} `{UuidFormat}.
Implicit Types (s : BlockStorage.t D).

Lemma blocks_for_pos n : 0 < n → 0 < BlockStorage.blocks_for n.
Proof. intros Hn. pose proof (blocks_for_spec n) as [Hb _]. destruct (N.eq_dec (BlockStorage.blocks_for n) 0) as [E|]; [|lia]. rewrite E in Hb. lia. Qed.
Lemma store_write_returns w total f s :
  device_wf (BlockStorage.device s) → BlockStorage.free_blocks s = range f total → f ≤ total → PendingWrite.data w ≠ [] →
  ∃ r s', BlockStorage.store_write w s = Return (r, s').
Proof.
  intros Hwf Hfree Hft Hw. unfold BlockStorage.store_write, BlockStorage.allocate_blocks.
  assert (0 < BlockStorage.blocks_for (len (PendingWrite.data w))) as Hn.
  { apply blocks_for_pos. unfold len. destruct (PendingWrite.data w); [done|simpl; lia]. }
  set (n := BlockStorage.blocks_for (len (PendingWrite.data w))) in *.
  rewrite Hfree. unfold len at 1. rewrite range_length.
  destruct (N.ltb_spec (N.of_nat (N.to_nat (total - f))) n) as [Hlt|Hge]; cbn [try_bind]; [by eexists _, _|].
  rewrite take_free_range by lia. rewrite N2Nat.id. cbn [try_bind].
  rewrite (range_cons f (f + n)) by lia. rewrite <- (range_cons f (f + n)) by lia.
  set (s0 := s <| BlockStorage.free_blocks := range (f + n) total |>).
  destruct (write_data_spec (N.to_nat n) f (PendingWrite.data w) s0 Hwf) as (r1 & s1 & E & _ & _).
  rewrite N2Nat.id in *. rewrite E. destruct r1; cbn [try_bind]; by eexists _, _.
Qed.

Lemma write_commit_record_frame id allocs s :
  let sb := BlockStorage.superblock s in
  let n := Superblock.commit_log_blocks sb in
  let k := Superblock.commit_sequence sb in
  device_wf (BlockStorage.device s) → geometry sb → k + 1 ≤ u64_max →
  ∃ r s', BlockStorage.write_commit_record id allocs s = Return (r, s') ∧
    s' = s <| BlockStorage.device := BlockStorage.device s' |>
           <| BlockStorage.superblock := with_sequence (k + 1) sb |> ∧
    device_wf (BlockStorage.device s') ∧
    agree_outside 0 (1 + n) (contents (BlockStorage.device s)) (contents (BlockStorage.device s')).
Proof.
  intros sb n k Hwf Hgeo Hk. pose proof Hgeo as [G1 G2 G3 G4 G5 G6]. fold n in G3, G4.
  assert (add_u64 k 1 = Return (k + 1)) as Hadd by (apply add_u64_Return; lia).
  pose proof (N.mod_lt (k + 1) n ltac:(lia)) as Hmod.
  assert (add_u64 1 ((k + 1) mod n) = Return (1 + (k + 1) mod n)) as Hadd2 by (apply add_u64_Return; lia).
  unfold BlockStorage.write_commit_record. fold sb k. rewrite Hadd. cbn [mbind outcome_bind].
  set (s0 := s <| BlockStorage.superblock ::= _ |>).
  assert (∀ e : BlockStorageError.t, ∃ r s', Return (Err (T := unit) e, s0) = Return (r, s') ∧
    s' = s <| BlockStorage.device := BlockStorage.device s' |>
           <| BlockStorage.superblock := with_sequence (k + 1) sb |> ∧
    device_wf (BlockStorage.device s') ∧
    agree_outside 0 (1 + n) (contents (BlockStorage.device s)) (contents (BlockStorage.device s'))) as Herr.
  { intros e. eexists _, s0. by split_and!. }
  destruct (record_to_vec _) as [b|]; [|apply Herr]. destruct (N.ltb_spec BLOCK_SIZE (len b)); [apply Herr|].
  change (Superblock.commit_log_blocks (BlockStorage.superblock s0)) with n.
  change (Superblock.commit_log_start (BlockStorage.superblock s0)) with (Superblock.commit_log_start sb).
  destruct (N.eqb_spec n 0); [lia|]. rewrite G2, Hadd2. cbn [mbind outcome_bind].
  destruct (write_step s0 (1 + (k + 1) mod n) (BlockStorage.padded b)) as (r1 & s1 & -> & T1 & _ & _);
    [done|by apply padded_length|]. apply (touches_weaken _ _ 0 (1 + n)) in T1; [|apply N.le_0_l|revert Hmod; generalize ((k + 1) mod n); lia].
  assert (∀ s2, touches 0 (1 + n) s1 s2 →
    s2 = s <| BlockStorage.device := BlockStorage.device s2 |> <| BlockStorage.superblock := with_sequence (k + 1) sb |> ∧
    device_wf (BlockStorage.device s2) ∧
    agree_outside 0 (1 + n) (contents (BlockStorage.device s)) (contents (BlockStorage.device s2))) as Hdone.
  { intros s2 T2. destruct (touches_trans _ _ _ _ _ T1 T2) as (E & W & A). split; [|done]. rewrite E. by destruct s. }
  destruct r1 as [u|e]; cbn [try_bind].
  2: { eexists _, s1. split; [done|]. apply Hdone. split_and!; [by destruct s1|apply T1|apply agree_refl]. }
  fold (seal s1). destruct (seal_spec s1) as (r2 & s2 & -> & T2 & _); [apply T1|].
  eexists _, s2. split; [done|]. apply Hdone. eapply touches_weaken; [done|lia..].
Qed.

(** The objects of a store with no open writes: the latest version of each is on the disk, below the
    first free block; [k] more commits fit into the sequence numbers. *)
Record volume (k : N) s (objects : gmap ObjectId.t (list N)) : Prop := {
  vo_wf : device_wf (BlockStorage.device s);
  vo_geo : geometry (BlockStorage.superblock s);
  vo_seq : Superblock.commit_sequence (BlockStorage.superblock s) + k ≤ u64_max;
  vo_pending : BlockStorage.pending s = ∅;
  vo_none o : objects !! o = None → BlockStorage.latest_versions s !! o = None;
  vo_data : ∃ f,
    BlockStorage.free_blocks s = range f (Superblock.total_blocks (BlockStorage.superblock s)) ∧
    Superblock.data_start (BlockStorage.superblock s) ≤ f ∧
    f ≤ Superblock.total_blocks (BlockStorage.superblock s) ∧
    ∀ o data, objects !! o = Some data → ∃ v a,
      BlockStorage.latest_versions s !! o = Some v ∧ BlockStorage.allocations s !! (o, v) = Some a ∧
      stored (contents (BlockStorage.device s)) (Superblock.data_start (BlockStorage.superblock s)) f
        (PendingWrite.mk o v data) a
}.
Lemma volume_weaken k k' s objects : volume k s objects → k' ≤ k → volume k' s objects.
Proof. intros [] Hk. split; try done. lia. Qed.

(** The device and the free list moved on, the indexes did not. *)
Lemma volume_frame k k' s objects f f' s' :
  volume k s objects →
  BlockStorage.free_blocks s = range f (Superblock.total_blocks (BlockStorage.superblock s)) →
  Superblock.data_start (BlockStorage.superblock s) ≤ f → f ≤ f' →
  f' ≤ Superblock.total_blocks (BlockStorage.superblock s) →
  BlockStorage.free_blocks s' = range f' (Superblock.total_blocks (BlockStorage.superblock s)) →
  device_wf (BlockStorage.device s') →
  (∃ q, BlockStorage.superblock s' = with_sequence q (BlockStorage.superblock s) ∧ q + k' ≤ u64_max) →
  BlockStorage.pending s' = ∅ → BlockStorage.latest_versions s' = BlockStorage.latest_versions s →
  BlockStorage.allocations s' = BlockStorage.allocations s →
  (∀ w a, stored (contents (BlockStorage.device s)) (Superblock.data_start (BlockStorage.superblock s)) f w a →
     stored (contents (BlockStorage.device s')) (Superblock.data_start (BlockStorage.superblock s)) f' w a) →
  volume k' s' objects.
Proof.
  intros [V1 V2 V3 V4 V5 (f0 & F1 & F2 & F3 & F4)] Hfree Hds Hff Hft Hfree' Hwf (q & Hsb & Hq) Hp Hl Ha Hst.
  rewrite Hfree in F1. apply range_inj_r in F1 as <-; [|lia|done].
  split; rewrite ?Hsb, ?Hl, ?Ha; try done.
  - destruct V2. by split.
  - exists f'. simpl. split_and!; [done|lia|done|]. intros o data Ho. destruct (F4 o data Ho) as (v & a & E1 & E2 & E3).
    exists v, a. split_and!; [done|done|]. by apply Hst.
Qed.

(** A commit of one write. *)
Lemma commit_one_volume k s objects id o v data :
  volume (k + 1) s objects → data ≠ [] →
  ∃ r s', BlockStorage.commit_pending id [PendingWrite.mk o v data] s = Return (r, s') ∧
    ((is_ok r = true ∧ volume k s' (<[o := data]> objects)) ∨ (is_ok r = false ∧ volume k s' objects)).
Proof.
  intros Hv Hdata. pose proof Hv as [V1 V2 V3 V4 V5 (f & F1 & F2 & F3 & F4)].
  set (w := PendingWrite.mk o v data). unfold BlockStorage.commit_pending. cbn [BlockStorage.store_writes].
  destruct (store_write_returns w _ f s V1 F1 F3 Hdata) as (r1 & s1 & E1).
  pose proof (store_write_spec w _ f s r1 s1 V1 F1 F3 E1) as (f1 & [X1 X2 X3 [X4 X5]] & S1).
  assert (∀ w a, stored (contents (BlockStorage.device s)) (Superblock.data_start (BlockStorage.superblock s)) f w a →
    stored (contents (BlockStorage.device s1)) (Superblock.data_start (BlockStorage.superblock s)) f1 w a) as Hst.
  { intros w' a' Hs. eapply stored_weaken; [by eapply stored_frame; [exact Hs|exact X3|left]|lia|done]. }
  assert (volume (k + 1) s1 objects) as Hv1.
  { eapply (volume_frame _ _ s _ f f1); try done; try (rewrite X1; done).
    exists (Superblock.commit_sequence (BlockStorage.superblock s)). split; [|done]. rewrite X1. by destruct s, superblock. }
  rewrite E1. destruct r1 as [a|e]; cbn [try_bind].
  2: { eexists _, _. split; [done|]. right. split; [done|]. eapply volume_weaken; [done|lia]. }
  assert (BlockStorage.superblock s1 = BlockStorage.superblock s) as Hsb by (rewrite X1; done).
  assert (BlockStorage.free_blocks s1 = range f1 (Superblock.total_blocks (BlockStorage.superblock s))) as Hfree1 by (rewrite X1; done).
  destruct (write_commit_record_frame id [a] s1) as (r2 & s2 & E2 & Y1 & Y2 & Y3); [done|by rewrite Hsb|rewrite Hsb; lia|].
  rewrite E2. rewrite Hsb in *.
  assert (∀ w a, stored (contents (BlockStorage.device s1)) (Superblock.data_start (BlockStorage.superblock s)) f1 w a →
    stored (contents (BlockStorage.device s2)) (Superblock.data_start (BlockStorage.superblock s)) f1 w a) as Hst2.
  { intros w' a' Hs. eapply stored_frame; [exact Hs|exact Y3|right]. apply V2. }
  assert (volume k s2 objects) as Hv2.
  { eapply (volume_frame _ _ s1 _ f1 f1); rewrite ?Hsb; try done; try (rewrite Y1; done).
    - lia.
    - eexists. split; [rewrite Y1; done|lia].
    - rewrite Y1. apply Hv1. }
  destruct r2 as [u|e]; cbn [try_bind]; eexists _, _; (split; [done|]); [left|by right].
  split; [done|]. cbn [foldl]. assert (stored (contents (BlockStorage.device s2)) (Superblock.data_start (BlockStorage.superblock s)) f1 w a) as Hw.
  { apply Hst2. eapply stored_weaken; [by apply S1|done|done]. }
  pose proof (stored_object _ _ _ _ _ Hw) as Ho. pose proof (stored_version _ _ _ _ _ Hw) as Hver. simpl in Ho, Hver.
  destruct Hv2 as [U1 U2 U3 U4 U5 (f2 & G1 & G2 & G3 & G4)].
  assert (BlockStorage.superblock s2 = with_sequence (Superblock.commit_sequence (BlockStorage.superblock s) + 1) (BlockStorage.superblock s)) as Hsb2
    by (rewrite Y1; done).
  assert (f2 = f1) as ->.
  { apply range_inj_r with (t := Superblock.total_blocks (BlockStorage.superblock s)); [by rewrite Hsb2 in G3|done|].
    rewrite <-Hfree1. rewrite Hsb2 in G1. simpl in G1. rewrite <-G1. by rewrite Y1. }
  split; try done; simpl.
  - intros o' Hn. rewrite Ho. apply lookup_insert_None in Hn as [Hn Hne]. rewrite lookup_insert_ne by done. by apply U5.
  - exists f1. split_and!; [done..|]. intros o' data' Hl. rewrite Ho, Hver. apply lookup_insert_Some in Hl as [[<- <-]|[Hne Hl]].
    + exists v, a. rewrite !lookup_insert_eq. split_and!; [done..|]. by rewrite Hsb2.
    + destruct (G4 o' data' Hl) as (v' & a' & L1 & L2 & L3). exists v', a'. rewrite !lookup_insert_ne by congruence. done.
Qed.
Lemma put_volume k s objects drawn o data :
  volume (k + 1) s objects → data ≠ [] →
  ∃ r s', PersistentFilesystem.put drawn o data s = Return (r, s') ∧
    ((is_ok r = true ∧ volume k s' (<[o := data]> objects)) ∨ (is_ok r = false ∧ volume k s' objects)).
Proof.
  intros Hv Hdata. unfold PersistentFilesystem.put, BlockStorage.begin_transaction, BlockStorage.write, BlockStorage.commit.
  destruct drawn as [dt dv]. cbn [fst snd]. change (Transaction.is_active (Transaction.new dt)) with true. cbn [negb].
  change (Transaction.id (Transaction.new dt)) with dt. change (Transaction.is_active (Transaction.new dt)) with true. cbn [negb].
  simpl (BlockStorage.pending _). rewrite (vo_pending _ _ _ Hv). unfold JournaledStorage.push_entry at 1.
  rewrite lookup_insert_eq, lookup_total_empty. simpl ([] ++ _).
  set (s0 := s <| BlockStorage.pending ::= _ |> <| BlockStorage.pending ::= _ |>).
  assert (volume (k + 1) s0 objects) as Hv0.
  { destruct Hv as [V1 V2 V3 V4 V5 V6]. split; try done. simpl. rewrite V4. unfold JournaledStorage.push_entry. rewrite delete_insert_eq. apply delete_empty. }
  change (inhabitant ++ [PendingWrite.mk o dv data]) with [PendingWrite.mk o dv data].
  destruct (commit_one_volume k s0 objects dt o dv data Hv0 Hdata) as (r & s' & -> & Hc).
  destruct r as [[]|e]; cbn; eexists _, _; (split; [done|]); destruct Hc as [[? ?]|[? ?]]; done || (left; done) || (right; done).
Qed.
Lemma get_volume k s objects t o :
  volume k s objects → ∃ r s', PersistentFilesystem.get t o s = Return (r, s') ∧ volume k s' objects ∧
    match objects !! o with Some data => r = Ok data | None => is_ok r = false end.
Proof.
  intros Hv. pose proof Hv as [V1 V2 V3 V4 V5 (f & F1 & F2 & F3 & F4)].
  unfold PersistentFilesystem.get, BlockStorage.begin_transaction, BlockStorage.read.
  change (Transaction.is_active (Transaction.new t)) with true. change (Transaction.id (Transaction.new t)) with t.
  rewrite V4, lookup_empty. cbn [negb mbind option_bind].
  destruct (objects !! o) as [data|] eqn:Eo.
  - destruct (F4 o data Eo) as (v & a & -> & Ha & Hst). cbn [ok_or].
    destruct (read_stored _ _ o v _ a s V1 V4 Ha Hst) as (s' & E); [etrans; [exact F3|apply V2]|].
    pose proof E as (Es & W & C)%read_object_data_frame; [|done].
    rewrite E. cbn. eexists _, _. split; [done|]. split; [|done].
    eapply (volume_frame _ _ s _ f f); try done; try (rewrite Es; done).
    + exists (Superblock.commit_sequence (BlockStorage.superblock s)). split; [|done]. rewrite Es. by destruct s, superblock.
    + rewrite C. done.
  - rewrite V5 by done. cbn. eexists _, _. split; [done|]. by split.
Qed.
End store.

(** ** The root directory *)

(** Distinct draws give distinct identifiers. *)
Class IdentifiersSpec `{Identifiers} := { uuids_inj :: Inj eq eq uuids }.

Section files.
Context {D : Type} `{DeviceSpec D} `{StorageJsonSpec} `{!DirectoryJsonSpec} `{UuidFormat} `{IdentifiersSpec}.
Import BareMetalFilesystem.
Implicit Types (s : BlockStorage.t D) (p : PersistentFilesystem.t D) (m : gmap string (list N)).

(** The entries of a directory lead to the contents [m]. *)
Definition describes (objects : gmap ObjectId.t (list N)) (root : ObjectId.t) (dir : PersistentDirectory.t) m : Prop :=
  ∀ name, match PersistentDirectory.entries dir !! name with
          | Some e => DirectoryEntry.object_id e ≠ root ∧
                      ∃ c, objects !! DirectoryEntry.object_id e = Some c ∧ m !! name = Some c
          | None => m !! name = None
          end.
(** All objects have identifiers among the first [drawn]. *)
Record tree_at (k : N) (drawn : nat) (root : ObjectId.t) s objects (dir : PersistentDirectory.t) m : Prop := {
  ta_volume : volume k s objects;
  ta_root : ∃ b, objects !! root = Some b ∧ directory_from_slice b = Some dir;
  ta_dir : describes objects root dir m;
  ta_ids o : is_Some (objects !! o) → ∃ j, (j < drawn)%nat ∧ o = object j
}.
Definition tree (k : N) (drawn : nat) (root : ObjectId.t) s m : Prop := ∃ objects dir, tree_at k drawn root s objects dir m.
Lemma tree_weaken k k' n n' root s m : tree k n root s m → k' ≤ k → (n ≤ n')%nat → tree k' n' root s m.
Proof.
  intros (objects & dir & [T1 T2 T3 T4]) Hk Hn. exists objects, dir. split; try done; [by eapply volume_weaken|].
  intros o (j & Hj & ->)%T4. exists j. split; [lia|done].
Qed.

Lemma read_directory_tree k n root t p m :
  tree k n root (PersistentFilesystem.storage p) m → ∃ objects dir p',
    PersistentFilesystem.read_directory t root p = Return (Ok dir, p') ∧
    tree_at k n root (PersistentFilesystem.storage p') objects dir m.
Proof.
  intros (objects & dir & [T1 (b & Hb & Hdir) T3 T4]). exists objects, dir.
  unfold PersistentFilesystem.read_directory, PersistentFilesystem.on_storage.
  destruct (get_volume k _ objects t root T1) as (r & s' & -> & Hv & Hr). rewrite Hb in Hr. subst r.
  cbn. rewrite Hdir. eexists. split; [done|]. split; [done| |done|done]. by exists b.
Qed.
Lemma write_directory_tree k n root d p objects dir m dir' m' :
  tree_at (k + 1) n root (PersistentFilesystem.storage p) objects dir m → describes objects root dir' m' →
  ∃ r p', PersistentFilesystem.write_directory d root dir' p = Return (r, p') ∧
    ((is_ok r = true ∧ tree k n root (PersistentFilesystem.storage p') m') ∨
     (is_ok r = false ∧ tree k n root (PersistentFilesystem.storage p') m)).
Proof.
  intros Ht Hd. pose proof Ht as [T1 (b & Hb & Hdir) T3 T4]. unfold PersistentFilesystem.write_directory, PersistentFilesystem.serialize.
  destruct (directory_to_vec dir') as [b'|] eqn:Eb; cbn [ok_or].
  2: { eexists _, _. split; [done|]. right. split; [done|]. eapply tree_weaken; [by exists objects, dir|lia|done]. }
  destruct (directory_roundtrip _ _ Eb) as [Hback Hne]. unfold PersistentFilesystem.on_storage.
  destruct (put_volume k _ objects d root b' T1 Hne) as (r & s' & -> & Hc). cbn [mbind outcome_bind].
  eexists _, _. split; [done|]. destruct Hc as [[Hr Hv]|[Hr Hv]]; [left|right]; (split; [done|]).
  - exists (<[root := b']> objects), dir'. split; [done| | |].
    + exists b'. by rewrite lookup_insert_eq.
    + intros name. specialize (Hd name). destruct (PersistentDirectory.entries dir' !! name) as [e|]; [|done].
      destruct Hd as [Hn (c & Hc & Hm)]. split; [done|]. exists c. by rewrite lookup_insert_ne.
    + intros o. destruct (decide (o = root)) as [->|]; [intros _; apply T4; by rewrite Hb|]. rewrite lookup_insert_ne by done. apply T4.
  - exists objects, dir. split; try done. by exists b.
Qed.
Lemma unlink_tree k n root d1 d2 name p m :
  tree (k + 1) n root (PersistentFilesystem.storage p) m →
  ∃ r p', PersistentFilesystem.unlink d1 d2 name root 0 p = Return (r, p') ∧
    ((is_ok r = true ∧ tree k n root (PersistentFilesystem.storage p') (delete name m)) ∨
     (is_ok r = false ∧ tree k n root (PersistentFilesystem.storage p') m)).
Proof.
  intros (objects & dir & p1 & E & Ht)%(read_directory_tree _ _ _ d1). unfold PersistentFilesystem.unlink. rewrite E. cbn [try_bind].
  unfold PersistentDirectory.remove_entry. cbv beta zeta iota.
  set (dir' := if bool_decide _ then _ else _).
  assert (PersistentDirectory.entries dir' = delete name (PersistentDirectory.entries dir)) as Hdir'.
  { unfold dir'. by case_bool_decide. }
  destruct (write_directory_tree k n root d2 p1 objects dir m dir' (delete name m) Ht) as (r & p' & -> & Hc).
  { intros name'. rewrite Hdir'. pose proof (ta_dir _ _ _ _ _ _ _ Ht name') as Hd.
    destruct (decide (name' = name)) as [->|]; [by rewrite !lookup_delete_eq|]. by rewrite !lookup_delete_ne. }
  destruct r; cbn [try_bind]; eexists _, _; (split; [done|]); by destruct Hc as [[? ?]|[? ?]]; [left|right] || done.
Qed.
Lemma write_file_tree k n root d content p m :
  tree (k + 1) n root (PersistentFilesystem.storage p) m → content ≠ [] → (∃ j, (j < n)%nat ∧ root = object j) →
  ∃ r p', PersistentFilesystem.write_file (object n) d content p = Return (r, p') ∧
    ((r = Ok (object n) ∧ ∃ objects dir, tree_at k (S n) root (PersistentFilesystem.storage p') objects dir m ∧
                                      objects !! object n = Some content) ∨
     (is_ok r = false ∧ tree k (S n) root (PersistentFilesystem.storage p') m)).
Proof.
  intros (objects & dir & [T1 (b & Hb & Hdir) T3 T4]) Hne (j & Hj & Hroot).
  unfold PersistentFilesystem.write_file, PersistentFilesystem.on_storage.
  destruct (put_volume k _ objects d (object n) content T1 Hne) as (r & s' & -> & Hc). cbn [mbind outcome_bind].
  assert (∀ o, is_Some (objects !! o) → o ≠ object n) as Hfresh.
  { intros o (i & Hi & ->)%T4. intros [= E%uuids_inj]. lia. }
  destruct Hc as [[Hr Hv]|[Hr Hv]]; destruct r; try done; cbn [try_bind]; eexists _, _; (split; [done|]); [left|right]; (split; [done|]).
  - exists (<[object n := content]> objects), dir. split; [|apply lookup_insert_eq]. split; [done| | |].
    + exists b. rewrite lookup_insert_ne; [done|]. apply not_eq_sym, Hfresh. by rewrite Hb.
    + intros name. specialize (T3 name). destruct (PersistentDirectory.entries dir !! name) as [e|]; [|done].
      destruct T3 as [Hn (c & Hc & Hm)]. split; [done|]. exists c. rewrite lookup_insert_ne; [done|]. apply not_eq_sym, Hfresh. by rewrite Hc.
    + intros o. destruct (decide (o = object n)) as [->|]; [intros _; exists n; split; [lia|done]|].
      rewrite lookup_insert_ne by done. intros (i & Hi & ->)%T4. exists i. split; [lia|done].
  - eapply tree_weaken; [|done|]; [exists objects, dir; split; try done; by exists b|lia].
Qed.
Lemma link_tree k n root d1 d2 name file content p m :
  (∃ objects dir, tree_at (k + 1) n root (PersistentFilesystem.storage p) objects dir m ∧ objects !! file = Some content) →
  file ≠ root →
  ∃ r p', PersistentFilesystem.link d1 d2 name root file ObjectKind.Blob 0 p = Return (r, p') ∧
    ((is_ok r = true ∧ tree k n root (PersistentFilesystem.storage p') (<[name := content]> m)) ∨
     (is_ok r = false ∧ tree k n root (PersistentFilesystem.storage p') m)).
Proof.
  intros (objects & dir & [T1 (b & Hb & Hdir) T3 T4] & Hfile) Hne.
  unfold PersistentFilesystem.link, PersistentFilesystem.read_directory, PersistentFilesystem.on_storage.
  destruct (get_volume _ _ objects d1 root T1) as (r & s' & -> & Hv & Hr). rewrite Hb in Hr. subst r.
  cbn [mbind outcome_bind try_bind]. rewrite Hdir. cbn [try_bind ok_or].
  set (p1 := p <| PersistentFilesystem.storage := s' |>). cbv zeta.
  assert (tree_at (k + 1) n root (PersistentFilesystem.storage p1) objects dir m) as Ht by (split; try done; by exists b).
  destruct (write_directory_tree k n root d2 p1 objects dir m
    (PersistentDirectory.add_entry name (DirectoryEntry.new name file ObjectKind.Blob) 0 dir) (<[name := content]> m) Ht) as (r & p' & E & Hc).
  { intros name'. simpl. specialize (T3 name'). destruct (decide (name' = name)) as [->|].
    - rewrite !lookup_insert_eq. simpl. split; [done|]. by exists content.
    - by rewrite !lookup_insert_ne. }
  simpl (DirectoryEntry.name _). rewrite E.
  destruct r; cbn [try_bind]; eexists _, _; (split; [done|]); by destruct Hc as [[? ?]|[? ?]]; [left|right] || done.
Qed.

(** The files of the bare-metal file system, with [3 n] more commits allowed. *)
Definition bare_stores (n : nat) (f : BareMetalFilesystem.t D) m : Prop :=
  tree (3 * N.of_nat n) (drawn f) (root_id f) (PersistentFilesystem.storage (fs f)) m ∧
  ∃ j, (j < drawn f)%nat ∧ root_id f = object j.
Lemma stores_step n f m k p' :
  tree (3 * N.of_nat n) (drawn f) (root_id f) (PersistentFilesystem.storage p') m →
  (∃ j, (j < drawn f)%nat ∧ root_id f = object j) →
  bare_stores n (f <| fs := p' |> <| drawn ::= Nat.add k |>) m.
Proof.
  intros Ht (j & Hj & Hr). split; [eapply tree_weaken; [done|done|simpl; lia]|]. exists j. split; [simpl; lia|done].
Qed.
Lemma bare_read n f m name : bare_stores n f m → ∃ r f',
  read_by_name name f = Return (r, f') ∧ bare_stores n f' m ∧
  match m !! name_of name with Some c => r = Ok c | None => is_ok r = false end.
Proof.
  intros [Ht Hj]. unfold read_by_name, on_fs at 1.
  destruct (read_directory_tree _ _ _ (tx (drawn f)) _ _ Ht) as (objects & dir & p1 & -> & [T1 T2 T3 T4]). cbn [mbind outcome_bind try_bind].
  assert (bare_stores n (f <| fs := p1 |> <| drawn ::= Nat.add 1 |>) m) as Hs1 by (apply stores_step; [by exists objects, dir|done]).
  specialize (T3 (name_of name)) as T. unfold PersistentDirectory.get_entry.
  destruct (PersistentDirectory.entries dir !! name_of name) as [e|]; [|eexists _, _; split; [done|]; by rewrite T].
  destruct T as [Hn (c & Hc & ->)]. unfold on_fs, PersistentFilesystem.read_file, PersistentFilesystem.on_storage.
  simpl (fs _). destruct (get_volume _ _ objects (tx (drawn (f <| fs := p1 |> <| drawn ::= Nat.add 1 |>))) (DirectoryEntry.object_id e) T1) as (r & s' & -> & Hv & Hr).
  rewrite Hc in Hr. subst r. cbn [mbind outcome_bind]. eexists _, _. split; [done|]. split; [|done].
  set (f1 := f <| fs := p1 |> <| drawn ::= Nat.add 1 |>) in *. apply stores_step; [|apply Hs1]. exists objects, dir. split; [done|done|done|].
  intros o (i & Hi & ->)%T4. exists i. split; [simpl; lia|done].
Qed.
Lemma bare_list n f m : bare_stores n f m → ∃ names f',
  list_names f = Return (Ok (text_of <$> names), f') ∧ bare_stores n f' m ∧
  NoDup names ∧ (∀ name, name ∈ names ↔ is_Some (m !! name)).
Proof.
  intros [Ht Hj]. unfold list_names, on_fs, PersistentFilesystem.list_dir.
  destruct (read_directory_tree _ _ _ (tx (drawn f)) _ _ Ht) as (objects & dir & p1 & -> & [T1 T2 T3 T4]). cbn [mbind outcome_bind try_bind].
  exists (PersistentDirectory.list_entries dir).*1. eexists. split; [done|].
  split; [apply stores_step; [by exists objects, dir|done]|]. unfold PersistentDirectory.list_entries. split.
  - rewrite (btree_iter_perm String.leb (PersistentDirectory.entries dir)). apply NoDup_fst_map_to_list.
  - intros name. specialize (T3 name). split.
    + intros ([name' e] & -> & Hin)%list_elem_of_fmap. apply elem_of_btree_iter in Hin. simpl in *.
      rewrite Hin in T3. by destruct T3 as [_ (c & _ & ->)].
    + intros Hm. destruct (PersistentDirectory.entries dir !! name) as [e|] eqn:E; [|rewrite T3 in Hm; by destruct Hm].
      apply list_elem_of_fmap. exists (name, e). split; [done|]. by apply elem_of_btree_iter.
Qed.
Lemma bare_entry n f m name : bare_stores n f m → ∃ r f',
  id_by_name name f = Return (Ok r, f') ∧ bare_stores n f' m ∧ (is_Some r ↔ is_Some (m !! name_of name)).
Proof.
  intros [Ht Hj]. unfold id_by_name, on_fs.
  destruct (read_directory_tree _ _ _ (tx (drawn f)) _ _ Ht) as (objects & dir & p1 & -> & [T1 T2 T3 T4]). cbn [mbind outcome_bind try_bind].
  eexists _, _. split; [done|]. split; [apply stores_step; [by exists objects, dir|done]|].
  specialize (T3 (name_of name)). unfold PersistentDirectory.get_entry.
  destruct (PersistentDirectory.entries dir !! name_of name) as [e|]; [destruct T3 as [_ (c & _ & ->)]; split; by eexists|rewrite T3; simpl; split; by intros [? ?]].
Qed.
Lemma bare_create k f m name content :
  tree (k + 2) (drawn f) (root_id f) (PersistentFilesystem.storage (fs f)) m →
  (∃ j, (j < drawn f)%nat ∧ root_id f = object j) → content ≠ [] →
  ∃ r f', create_file name content f = Return (r, f') ∧ root_id f' = root_id f ∧ (drawn f ≤ drawn f')%nat ∧
    ((is_ok r = true ∧ tree k (drawn f') (root_id f) (PersistentFilesystem.storage (fs f')) (<[name_of name := content]> m)) ∨
     (is_ok r = false ∧ tree k (drawn f') (root_id f) (PersistentFilesystem.storage (fs f')) m)).
Proof.
  intros Ht Hj Hne. unfold create_file, on_fs at 1.
  destruct (write_file_tree (k + 1) (drawn f) (root_id f) (two (S (drawn f))) content (fs f) m) as (r & p1 & -> & Hc);
    [by replace (k + 1 + 1) with (k + 2) by lia|done|done|]. cbn [mbind outcome_bind].
  destruct Hc as [[-> (objects & dir & Hta & Hobj)]|[Hr Ht1]]; [|destruct r; [done|]]; cbn [try_bind].
  2: { eexists _, _. split; [done|]. split; [done|]. split; [simpl; lia|]. right. split; [done|]. eapply tree_weaken; [done|lia|simpl; lia]. }
  set (f1 := f <| fs := p1 |> <| drawn ::= Nat.add 3 |>). unfold on_fs.
  destruct (link_tree k (drawn f1) (root_id f1) (tx (drawn f1)) (two (S (drawn f1))) (name_of name) (object (drawn f)) content (fs f1) m)
    as (r & p2 & -> & Hc).
  { exists objects, dir. split; [|done]. destruct Hta as [T1 T2 T3 T4]. split; try done.
    intros o (i & Hi & ->)%T4. exists i. split; [simpl; lia|done]. }
  { destruct Hj as (j & Hj & Hroot). simpl. rewrite Hroot. intros [= E%uuids_inj]. lia. }
  cbn [mbind outcome_bind]. destruct r; cbn [try_bind]; eexists _, _; (split; [done|]); (split; [done|]); (split; [simpl; lia|]);
    destruct Hc as [[Hr Ht2]|[Hr Ht2]]; try done; [left|right]; (split; [done|]); (eapply tree_weaken; [done|lia|simpl; lia]).
Qed.
Lemma bare_write n f m name content : bare_stores (S n) f m → content ≠ [] → ∃ r f',
  write_by_name name content f = Return (r, f') ∧
  ((is_ok r = true ∧ bare_stores n f' (<[name_of name := content]> m)) ∨
   (is_ok r = false ∧ (bare_stores n f' m ∨ bare_stores n f' (delete (name_of name) m)))).
Proof.
  intros [Ht Hj] Hne. unfold write_by_name, on_fs.
  destruct (unlink_tree (3 * N.of_nat n + 2) (drawn f) (root_id f) (tx (drawn f)) (two (S (drawn f))) (name_of name) (fs f) m) as (r & p1 & -> & Hc).
  { by replace (3 * N.of_nat n + 2 + 1) with (3 * N.of_nat (S n)) by lia. }
  cbn [mbind outcome_bind]. set (f1 := f <| fs := p1 |> <| drawn ::= Nat.add 3 |>).
  assert (∃ m1, (m1 = m ∨ m1 = delete (name_of name) m) ∧
    tree (3 * N.of_nat n + 2) (drawn f1) (root_id f1) (PersistentFilesystem.storage (fs f1)) m1) as (m1 & Hm1 & Ht1).
  { destruct Hc as [[_ Ht1]|[_ Ht1]]; [exists (delete (name_of name) m)|exists m];
      (split; [by auto|]); (eapply tree_weaken; [done|done|simpl; lia]). }
  assert (∃ j, (j < drawn f1)%nat ∧ root_id f1 = object j) as Hj1.
  { destruct Hj as (j & Hj & Hroot). exists j. split; [simpl; lia|done]. }
  destruct (bare_create _ f1 m1 name content Ht1 Hj1 Hne) as (r2 & f2 & -> & Er & Hd & Hc2). eexists _, _. split; [done|].
  assert (∀ m', tree (3 * N.of_nat n) (drawn f2) (root_id f1) (PersistentFilesystem.storage (fs f2)) m' → bare_stores n f2 m') as Hdone.
  { intros m' Hm'. split; [by rewrite Er|]. rewrite Er. destruct Hj1 as (j & ? & ?). exists j. split; [lia|done]. }
  destruct Hc2 as [[Hr Ht2]|[Hr Ht2]]; [left|right]; (split; [done|]).
  - destruct Hm1 as [->| ->]; apply Hdone; [done|]. by rewrite insert_delete_eq in Ht2.
  - destruct Hm1 as [->| ->]; [left|right]; by apply Hdone.
Qed.
#[global] Program Instance bare_files_spec : BareFilesSpec (BareMetalFilesystem.t D) := {| stores := bare_stores |}.
Next Obligation. intros n f m [Ht Hj]. split; [eapply tree_weaken; [done|lia|done]|done]. Qed.
Next Obligation. apply bare_read. Qed.
Next Obligation. apply bare_write. Qed.
Next Obligation. apply bare_list. Qed.
Next Obligation. apply bare_entry. Qed.
End files.

(** ** A fresh file system *)

Section fresh.
Context {D : Type} `{DeviceSpec D} `{StorageJsonSpec} `{!DirectoryJsonSpec} `{UuidFormat} `{IdentifiersSpec}.
Import BareMetalFilesystem.

Lemma format_volume (d : D) s k : device_wf d → BlockStorage.format d = Return (Ok s) → k ≤ u64_max → volume k s ∅.
Proof.
  intros Hwf E Hk. pose proof (format_pending _ _ E) as Hp. revert E.
  unfold BlockStorage.format. intros ([sb|e] & El & E)%bind_Return; [|done].
  apply layout_geometry in El as (G & Ht & Hs0 & Hl). revert E.
  destruct (superblock_to_vec sb) as [b|] eqn:Hb; [|done].
  destruct (N.ltb_spec BLOCK_SIZE (len b)); [done|].
  destruct (write_block 0 _ d) as [[u|e] d1] eqn:Hw; [|done].
  apply write_spec in Hw as (W1 & C1 & Hi); [|done|by apply padded_length].
  destruct (flush d1) as [[u'|e] d2] eqn:Hf; [|done].
  apply flush_spec in Hf as (W2 & C2); [|done]. intros [= <-].
  split; simpl; try done; [lia|]. exists (Superblock.data_start sb). split_and!; [done|done|apply G|]. intros o data Ho. by rewrite lookup_empty in Ho.
Qed.
Lemma fresh_stores (d : D) kind n f k :
  device_wf d → new_with_hhdm d kind n = Return (Ok f) → 3 * N.of_nat k + 1 ≤ u64_max → stores k f ∅.
Proof.
  intros Hwf. unfold new_with_hhdm, PersistentFilesystem.format. intros ([p|e] & E & [= <-])%bind_Return Hk.
  apply bind_Return in E as ([s|e] & Ef & E); [|done]. revert E. unfold PersistentFilesystem.serialize.
  destruct (directory_to_vec _) as [b|] eqn:Eb; [|done]. cbn [ok_or].
  destruct (directory_roundtrip _ _ Eb) as [Hback Hne].
  destruct (put_volume (3 * N.of_nat k) s ∅ (two (S n)) (object n) b) as (r & s' & -> & Hc);
    [by apply (format_volume d)|done|]. cbn [mbind outcome_bind]. destruct r as [v|e]; [|done]. intros [= <-].
  destruct Hc as [[_ Hv]|[? _]]; [|done]. split; simpl.
  - exists (<[object n := b]> ∅), (PersistentDirectory.new "system" 0). split; [done| | |].
    + exists b. by rewrite lookup_insert_eq.
    + intros name. simpl. by rewrite !lookup_empty.
    + intros o [c Hc]. apply lookup_insert_Some in Hc as [[<- _]|[_ Hc]]; [|by rewrite lookup_empty in Hc].
      exists n. split; [lia|done].
  - exists n. split; [lia|done].
Qed.
End fresh.

Module BareFsSpec.

(** *** What files promise *)

Inductive op := Read (name : Str.t) | Write (name : Str.t) (content : list N) | ListAll.
Inductive answer := Bytes (r : option (list N)) | Written (ok : bool) | Names (l : list Str.t).
(** The map, before and after an operation. *)
Inductive file_step : gmap string (list N) → op → answer → gmap string (list N) → Prop :=
| step_read m name : file_step m (Read name) (Bytes (m !! name_of name)) m
| step_write m name content : file_step m (Write name content) (Written true) (<[name_of name := content]> m)
| step_refused m name content : file_step m (Write name content) (Written false) m
| step_lost m name content : file_step m (Write name content) (Written false) (delete (name_of name) m)
| step_list m names : NoDup names → (∀ name, name ∈ names ↔ is_Some (m !! name)) →
    file_step m ListAll (Names (text_of <$> names)) m.
Inductive file_steps : gmap string (list N) → list op → list answer → gmap string (list N) → Prop :=
| steps_nil m : file_steps m [] [] m
| steps_cons m o a m1 ops l m2 : file_step m o a m1 → file_steps m1 ops l m2 → file_steps m (o :: ops) (a :: l) m2.

Section run.
Context {F : Type} `{BareFiles F}.
Definition perform (o : op) (f : F) : outcome (answer * F) :=
  match o with
  | Read name => '(r, f) ← read_file_by_name name f; Return (Bytes (match r with Ok c => Some c | Err _ => None end), f)
  | Write name content => '(r, f) ← write_file_by_name name content f; Return (Written (is_ok r), f)
  | ListAll => '(r, f) ← list_files f; Return (Names (match r with Ok l => l | Err _ => [] end), f)
  end.
Fixpoint perform_all (ops : list op) (f : F) : outcome (list answer * F) :=
  match ops with
  | [] => Return ([], f)
  | o :: ops => '(a, f) ← perform o f; '(l, f) ← perform_all ops f; Return (a :: l, f)
  end.
(** The one thing the files do not bear: a write of nothing. *)
Definition not_empty (o : op) : Prop := match o with Write _ c => c ≠ [] | _ => True end.

Lemma perform_steps `{!BareFilesSpec F} ops f m : stores (length ops) f m → Forall not_empty ops →
  ∃ l f' m', perform_all ops f = Return (l, f') ∧ file_steps m ops l m'.
Proof.
  revert f m. induction ops as [|o ops IH]; intros f m Hs Hne; [by eexists _, _, _; split; [|constructor]|].
  apply Forall_cons in Hne as [Ho Hne]. cbn [perform_all].
  assert (∃ a f1 m1, perform o f = Return (a, f1) ∧ stores (length ops) f1 m1 ∧ file_step m o a m1) as (a & f1 & m1 & -> & Hs1 & Hstep).
  { simpl in Hs. destruct o as [name|name content|]; simpl.
    - apply stores_weaken in Hs. destruct (read_ok _ _ _ name Hs) as (r & f1 & -> & Hs1 & Hr). cbn. eexists _, _, _. split; [done|]. split; [done|].
      replace (match r with Ok c => Some c | Err _ => None end) with (m !! name_of name); [constructor|].
      destruct (m !! name_of name); [by rewrite Hr|by destruct r].
    - destruct (write_ok _ _ _ name content Hs Ho) as (r & f1 & -> & Hc). cbn.
      destruct Hc as [[-> ?]|[-> [?|?]]]; eexists _, _, _; (split; [done|]); (split; [done|]); constructor.
    - apply stores_weaken in Hs. destruct (list_ok _ _ _ Hs) as (names & f1 & -> & Hs1 & Hn & Hm). cbn.
      eexists _, _, _. split; [done|]. split; [done|]. by constructor. }
  cbn [mbind outcome_bind]. destruct (IH f1 m1 Hs1 Hne) as (l & f' & m' & -> & Hsteps). cbn. eexists _, _, _. split; [done|]. by econstructor.
Qed.
End run.

(** C18: The files of the bare-metal kernel are a map: on a freshly formatted disk, whatever its writes
    do, any sequence of reads, writes and listings returns and answers as a finite map from names to
    contents would: a read gives the content of the last successful write, a listing every name once,
    and a write that fails changes nothing but, at worst, loses the file it was to replace.  No write
    may be of nothing, and the sequence numbers must not run out. *)
Theorem bare_files_are_a_map `{DeviceSpec D} `{StorageJsonSpec} `{!DirectoryJsonSpec} `{UuidFormat} `{IdentifiersSpec}
    (d : D) kind n f (ops : list op) :
  device_wf d → BareMetalFilesystem.new_with_hhdm d kind n = Return (Ok f) → 3 * len ops + 1 ≤ u64_max →
  Forall not_empty ops →
  ∃ answers f' m, perform_all ops f = Return (answers, f') ∧ file_steps ∅ ops answers m.
Proof. intros Hwf E Hlen Hne. apply perform_steps; [|done]. by eapply fresh_stores. Qed.
End BareFsSpec.

(** ** A codec, and a disk *)

Module BareFsExample.
Import BareFsSpec BlockSpec.
Definition kind_number (k : ObjectKind.t) : N := match k with ObjectKind.Blob => 0 | ObjectKind.Log => 1 | ObjectKind.Map => 2 end.
Definition number_kind (n : N) : ObjectKind.t := match n with 0 => ObjectKind.Blob | 1 => ObjectKind.Log | _ => ObjectKind.Map end.
Definition entry_data (e : DirectoryEntry.t) : string * N * N :=
  (DirectoryEntry.name e, ObjectId.as_uuid (DirectoryEntry.object_id e), kind_number (DirectoryEntry.kind e)).
Definition data_entry (x : string * N * N) : DirectoryEntry.t :=
  DirectoryEntry.new x.1.1 (ObjectId.from_uuid x.1.2) (number_kind x.2).
Definition directory_data (d : PersistentDirectory.t) : list (string * (string * N * N)) * option N * (N * N * string) :=
  (map_to_list (entry_data <$> PersistentDirectory.entries d), ObjectId.as_uuid <$> PersistentDirectory.parent d,
   let m := PersistentDirectory.metadata d in (DirectoryMetadata.created_at m, DirectoryMetadata.modified_at m, DirectoryMetadata.owner m)).
Definition data_directory (x : list (string * (string * N * N)) * option N * (N * N * string)) : PersistentDirectory.t :=
  PersistentDirectory.mk (data_entry <$> list_to_map x.1.1) (ObjectId.from_uuid <$> x.1.2)
    (DirectoryMetadata.mk x.2.1.1 x.2.1.2 x.2.2).
Lemma directory_data_roundtrip d : data_directory (directory_data d) = d.
Proof.
  destruct d as [es pa [c m o]]. unfold data_directory, directory_data. simpl. f_equal.
  - rewrite list_to_map_to_list, <-map_fmap_compose. rewrite <-(map_fmap_id es) at 2. apply map_fmap_ext.
    intros i [nm [u] []] _; done.
  - destruct pa as [[u]|]; done.
Qed.
Definition json : StorageJson := {|
  superblock_to_vec sb := Some (numbers_to_vec (superblock_numbers sb));
  superblock_from_slice b := l ← numbers_from_slice b; numbers_superblock l;
  record_to_vec r := Some (numbers_to_vec (record_numbers r));
  record_from_slice b := l ← numbers_from_slice b; numbers_record l;
  directory_to_vec d := Some (digits (encode (directory_data d)));
  directory_from_slice b := p ← undigits b; data_directory <$> decode p;
  to_vec_error _ := "unsupported";
  from_slice_error _ := "unsupported";
  crc32 b := sumN b mod 2 ^ 32
|}.
#[local] Existing Instance json.
#[local] Instance json_spec : StorageJsonSpec.
Proof. destruct sample_json_spec as [S1 S2]. split; [exact S1|exact S2]. Qed.
#[local] Instance json_directories : DirectoryJsonSpec.
Proof.
  split. intros d b [= <-]. split; [|apply digits_nonzero]. cbn [directory_from_slice json].
  rewrite undigits_digits. cbn [mbind option_bind]. rewrite decode_encode. simpl. by rewrite directory_data_roundtrip.
Qed.
#[local] Existing Instance sample_format.
#[local] Instance counting : Identifiers := {| uuids n := N.of_nat n |}.
#[local] Instance counting_spec : IdentifiersSpec.
Proof. split. intros a b E. by apply Nat2N.inj in E. Qed.

(** The disk of the kernel. *)
Definition disk : RamDisk.t := RamDisk.new StorageBackend.RAM_DISK_BLOCKS.
Definition fresh : outcome (BareMetalFilesystem.t RamDisk.t) :=
  r ← BareMetalFilesystem.new_with_hhdm disk StorageBackend.KindRamDisk 0; match r with Ok f => Return f | Err _ => Panic end.
Definition fresh_files : BareMetalFilesystem.t RamDisk.t :=
  match fresh with Return f => f | _ => BareMetalFilesystem.mk (PersistentFilesystem.mk (BlockStorage.mk disk
    (Superblock.mk 0 0 0 0 0 0 0 0 0) ∅ ∅ [] ∅ None) (BareMetalFilesystem.object 0)) (BareMetalFilesystem.object 0) StorageBackend.KindRamDisk 0 end.
Definition note : Str.t := Str.of_string "note".
Definition sample_ops : list op := [Write note [104; 105]; Read note; Write note [111; 107]; Read note; ListAll].

Lemma fresh_files_ok : BareMetalFilesystem.new_with_hhdm disk StorageBackend.KindRamDisk 0 = Return (Ok fresh_files).
Proof. vm_compute. reflexivity. Qed.
Lemma bare_files_are_a_map_witness :
  Forall not_empty sample_ops ∧
  ∃ answers f' m, perform_all sample_ops fresh_files = Return (answers, f') ∧ file_steps ∅ sample_ops answers m.
Proof.
  assert (Forall not_empty sample_ops) as Hne by (repeat constructor; done).
  split; [exact Hne|]. apply (bare_files_are_a_map disk StorageBackend.KindRamDisk 0);
    [apply ram_disk_new_wf|exact fresh_files_ok|vm_compute; discriminate|exact Hne].
Defined.

(** Storing nothing is an index out of range, and stops the kernel. *)
Lemma empty_write_panics : perform_all [Write note []] fresh_files = Panic.
Proof. vm_compute. reflexivity. Qed.

(** Blocks are never given back: each save takes three, and the ninth one finds none for the
    directory, after the old file is unlinked. *)
Definition saves (n : nat) : list op := replicate n (Write note [104; 105]).
Lemma ninth_save_loses_file :
  (fst <$> perform_all (saves 8 ++ [Read note]) fresh_files) = Return (replicate 8 (Written true) ++ [Bytes (Some [104; 105])]) ∧
  (fst <$> perform_all (saves 9 ++ [Read note]) fresh_files) = Return (replicate 8 (Written true) ++ [Written false; Bytes None]).
Proof. vm_compute. split; reflexivity. Qed.
End BareFsExample.
