(* ===== verification/BareWorkspace.v ===== *)
(** * The palette overlay and the editor of the bare-metal workspace

    [kernel_bootstrap/src/palette_overlay.rs] and [minimal_editor.rs]: the list of commands that opens
    over the workspace, and the editor core with a viewport and the documents of the bare-metal files.

    The second part is the session itself. *)

From S2P Require Import Prelude CoreTypes Debug Storage BlockStore Editor Text Input Palette BareFs VgaConsole BareMem BareIo BareKernel.
Open Scope string_scope.
Open Scope list_scope.
Open Scope nat_scope.

(** ** The palette overlay *)

Module FocusTarget.
(* kernel_bootstrap/src/palette_overlay.rs:27-36 FocusTarget *)
Inductive t := None_ | Editor | Cli.
End FocusTarget.

Module PaletteKeyAction.
(* kernel_bootstrap/src/palette_overlay.rs:313-324 PaletteKeyAction *)
Inductive t := None_ | Consumed | Close | Execute (id : CommandId.t).
End PaletteKeyAction.

Module PaletteOverlayState.
(* kernel_bootstrap/src/palette_overlay.rs:22-22 MAX_QUERY_LEN *)
Definition MAX_QUERY_LEN : nat := 128.
(* kernel_bootstrap/src/palette_overlay.rs:25-25 MAX_DISPLAYED_RESULTS *)
Definition MAX_DISPLAYED_RESULTS : nat := 10.
(** [is_open] is the field [open]. *)
(* kernel_bootstrap/src/palette_overlay.rs:38-52 PaletteOverlayState *)
Record t := mk {
  is_open : bool;
  query : Str.t;
  results : list CommandDescriptor.t;
  selection_index : nat;
  prev_focus : FocusTarget.t;
  in_cli_mode : bool
}.
#[global] Instance rebuild_t : Rebuild t := λ s,
  mk (is_open s) (query s) (results s) (selection_index s) (prev_focus s) (in_cli_mode s).
(* kernel_bootstrap/src/palette_overlay.rs:56-65 PaletteOverlayState::new *)
Definition new : t := mk false [] [] 0 FocusTarget.None_ false.
(* kernel_bootstrap/src/palette_overlay.rs:68-74 PaletteOverlayState::open *)
Definition open (focus : FocusTarget.t) (s : t) : t := mk true [] [] 0 focus (in_cli_mode s).
(* kernel_bootstrap/src/palette_overlay.rs:77-84 PaletteOverlayState::open_with_context *)
Definition open_with_context (focus : FocusTarget.t) (cli : bool) (s : t) : t := mk true [] [] 0 focus cli.
(* kernel_bootstrap/src/palette_overlay.rs:87-92 PaletteOverlayState::close *)
Definition close (s : t) : t := mk false [] [] 0 (prev_focus s) (in_cli_mode s).
Section search.
Context `{Lowercase}.
(* kernel_bootstrap/src/palette_overlay.rs:126-148 PaletteOverlayState::refresh_results *)
Definition refresh_results (palette : CommandPalette.t) (s : t) : outcome t :=
  found ← (match query s with
           | [] => Return (CommandPalette.list_commands palette)
           | q => CommandPalette.filter_commands q palette
           end);
  let found := if in_cli_mode s
               then filter (λ cmd, CommandId.as_str (CommandDescriptor.id cmd) ≠ Str.of_string "open_cli") found
               else found in
  Return (s <| results := found |>
            <| selection_index ::= λ i, match found with [] => 0 | _ => Nat.min i (length found - 1) end |>).
(* kernel_bootstrap/src/palette_overlay.rs:104-108 PaletteOverlayState::update_query *)
Definition update_query (palette : CommandPalette.t) (q : Str.t) (s : t) : outcome t :=
  refresh_results palette (s <| query := q |>).
(* kernel_bootstrap/src/palette_overlay.rs:110-116 PaletteOverlayState::append_char *)
Definition append_char (palette : CommandPalette.t) (ch : N) (s : t) : outcome t :=
  if Str.len (query s) <? MAX_QUERY_LEN then refresh_results palette (s <| query ::= λ q, q ++ [ch] |>) else Return s.
(* kernel_bootstrap/src/palette_overlay.rs:118-124 PaletteOverlayState::backspace *)
Definition backspace (palette : CommandPalette.t) (s : t) : outcome t :=
  match query s with
  | [] => Return s
  | q => refresh_results palette (s <| query := EditorCore.pop_char q |>)
  end.
End search.
(* kernel_bootstrap/src/palette_overlay.rs:150-155 PaletteOverlayState::move_selection_up *)
Definition move_selection_up (s : t) : t := s <| selection_index ::= λ i, i - 1 |>.
(* kernel_bootstrap/src/palette_overlay.rs:157-162 PaletteOverlayState::move_selection_down *)
Definition move_selection_down (s : t) : t :=
  if selection_index s <? length (results s) - 1 then s <| selection_index ::= S |> else s.
(* kernel_bootstrap/src/palette_overlay.rs:164-167 PaletteOverlayState::selected_command *)
Definition selected_command (s : t) : option CommandId.t := CommandDescriptor.id <$> results s !! selection_index s.
(* kernel_bootstrap/src/palette_overlay.rs:169-173 PaletteOverlayState::displayed_results *)
Definition displayed_results (s : t) : list CommandDescriptor.t := take (Nat.min (length (results s)) MAX_DISPLAYED_RESULTS) (results s).
(* kernel_bootstrap/src/palette_overlay.rs:180-187 PaletteOverlayState::context_header *)
Definition context_header (s : t) : Str.t :=
  Str.of_string "Commands " ++ [8212%N] ++ (if in_cli_mode s then Str.of_string " CLI" else Str.of_string " Workspace").
(* kernel_bootstrap/src/palette_overlay.rs:194-197 PaletteOverlayState::result_count *)
Definition result_count (s : t) : nat := length (results s).

(** The letters and digits in the order of the key codes. *)
(* kernel_bootstrap/src/palette_overlay.rs:259-311 keycode_to_char *)
Definition keycode_to_char (code : KeyCode.t) : option N :=
  match code with
  | KeyCode.Space => Some 32 | KeyCode.Minus => Some 45 | KeyCode.Equal => Some 61
  | KeyCode.LeftBracket => Some 91 | KeyCode.RightBracket => Some 93 | KeyCode.Backslash => Some 92
  | KeyCode.Semicolon => Some 59 | KeyCode.Quote => Some 39 | KeyCode.Comma => Some 44
  | KeyCode.Period => Some 46 | KeyCode.Slash => Some 47 | KeyCode.Grave => Some 96
  | code =>
      let n := N.of_nat (KeyCode.to_nat code) in
      if (n <? 26)%N then Some (97 + n)%N else if (n <? 36)%N then Some (48 + (n - 26))%N else None
  end%N.
(* kernel_bootstrap/src/palette_overlay.rs:206-252 handle_palette_key *)
Definition handle_palette_key `{Lowercase} (palette : CommandPalette.t) (key_event : KeyEvent.t) (s : t)
    : outcome (PaletteKeyAction.t * t) :=
  match KeyEvent.code key_event with
  | KeyCode.Escape => Return (PaletteKeyAction.Close, s)
  | KeyCode.Enter =>
      Return (match selected_command s with Some id => PaletteKeyAction.Execute id | None => PaletteKeyAction.None_ end, s)
  | KeyCode.Backspace => s ← backspace palette s; Return (PaletteKeyAction.Consumed, s)
  | KeyCode.Up => Return (PaletteKeyAction.Consumed, move_selection_up s)
  | KeyCode.Down => Return (PaletteKeyAction.Consumed, move_selection_down s)
  | code =>
      match keycode_to_char code with
      | Some ch => s ← append_char palette ch s; Return (PaletteKeyAction.Consumed, s)
      | None => Return (PaletteKeyAction.None_, s)
      end
  end.
End PaletteOverlayState.

(** ** The editor *)

Module MinimalEditor.
Section with_files.
Context {F : Type} `{BareFiles F}.
(* kernel_bootstrap/src/minimal_editor.rs:23-39 MinimalEditor *)
Record t := mk {
  core : EditorCore.t;
  viewport_rows : nat;
  scroll_offset : nat;
  status : Str.t;
  editor_io : option (BareMetalEditorIo.t F);
  document : option DocumentHandle.t
}.
#[global] Instance rebuild_t : Rebuild t := λ e,
  mk (core e) (viewport_rows e) (scroll_offset e) (status e) (editor_io e) (document e).
(* kernel_bootstrap/src/minimal_editor.rs:42-53 MinimalEditor::new *)
Definition new (viewport_rows : nat) : t := mk EditorCore.new viewport_rows 0 [] None None.
(* kernel_bootstrap/src/minimal_editor.rs:55-65 MinimalEditor::set_editor_io *)
Definition set_editor_io (io : BareMetalEditorIo.t F) (handle : DocumentHandle.t) (e : t) : t :=
  e <| editor_io := Some io |> <| document := Some handle |>.
(* kernel_bootstrap/src/minimal_editor.rs:67-72 MinimalEditor::load_content *)
Definition load_content (content : Str.t) (e : t) : t :=
  e <| core ::= λ c, EditorCore.mark_saved (EditorCore.load_content content c) |>.
Definition mode (e : t) : EditorMode.t := EditorCore.mode (core e).
Definition cursor (e : t) : Position.t := EditorCore.cursor (core e).
(* kernel_bootstrap/src/minimal_editor.rs:94-113 MinimalEditor::status_line *)
Definition status_line (e : t) : Str.t :=
  match status e with
  | _ :: _ => status e
  | [] =>
      match EditorCore.status_message (core e) with
      | _ :: _ => EditorCore.status_message (core e)
      | [] => Str.of_string match mode e with
                            | EditorMode.Normal => "-- NORMAL --" | EditorMode.Insert => "-- INSERT --"
                            | EditorMode.Command => "-- COMMAND --" | EditorMode.Search => "-- SEARCH --"
                            end
      end
  end.
(* kernel_bootstrap/src/minimal_editor.rs:115-118 MinimalEditor::is_dirty *)
Definition is_dirty (e : t) : bool := EditorCore.dirty (core e).
(* kernel_bootstrap/src/minimal_editor.rs:243-259 MinimalEditor::refresh_prompt_status *)
Definition refresh_prompt_status (e : t) : t :=
  match status e with
  | _ :: _ => e
  | [] =>
      match mode e with
      | EditorMode.Command => e <| status := Str.of_string ":" ++ EditorCore.command_buffer (core e) |>
      | EditorMode.Search => e <| status := Str.of_string "/" ++ EditorCore.search_query (core e) |>
      | _ => e
      end
  end.
(** [viewport_rows - 1] panics on a viewport without rows. *)
(* kernel_bootstrap/src/minimal_editor.rs:261-271 MinimalEditor::adjust_viewport *)
Definition adjust_viewport (e : t) : outcome t :=
  let cursor_row := Position.row (cursor e) in
  if cursor_row <? scroll_offset e then Return (e <| scroll_offset := cursor_row |>)
  else if scroll_offset e + viewport_rows e <=? cursor_row then
    if viewport_rows e =? 0 then Panic else Return (e <| scroll_offset := cursor_row - (viewport_rows e - 1) |>)
  else Return e.
(** A request of the core, with files at hand; [true] to quit. *)
(* kernel_bootstrap/src/minimal_editor.rs:154-200 MinimalEditor::process_byte (with EditorIo) *)
Definition serve_io (request : CoreIoRequest.t) (io : BareMetalEditorIo.t F) (e : t) : outcome (bool * t) :=
  let content := TextBuffer.as_string (EditorCore.buffer (core e)) in
  let failed (e : t) := e <| status := Str.of_string "Error: failed to save file" |> in
  match request with
  | CoreIoRequest.Save =>
      match document e with
      | Some handle =>
          '(r, io) ← BareMetalEditorIo.save handle content io;
          let e := e <| editor_io := Some io |> in
          Return (false, match r with
                         | Ok msg => e <| status := msg |> <| core ::= EditorCore.mark_saved |>
                         | Err _ => failed e
                         end)
      | None => Return (false, e <| status := Str.of_string "Error: no file path (use :w <path>)" |>)
      end
  | CoreIoRequest.SaveAs path =>
      '(r, io) ← BareMetalEditorIo.save_as path content io;
      let e := e <| editor_io := Some io |> in
      Return (false, match r with
                     | Ok (msg, handle) => e <| status := msg |> <| document := Some handle |> <| core ::= EditorCore.mark_saved |>
                     | Err _ => failed e
                     end)
  | CoreIoRequest.SaveAndQuit =>
      match document e with
      | Some handle => '(_, io) ← BareMetalEditorIo.save handle content io; Return (true, e <| editor_io := Some io |>)
      | None => Return (true, e)
      end
  end.
(* kernel_bootstrap/src/minimal_editor.rs:201-215 MinimalEditor::process_byte (without EditorIo) *)
Definition refuse_io (request : CoreIoRequest.t) (e : t) : bool * t :=
  let e := e <| status := Str.of_string "Filesystem unavailable" |> in
  match request with
  | CoreIoRequest.SaveAndQuit => (true, e)
  | _ => (false, e <| core ::= EditorCore.mark_saved |>)
  end.
(* kernel_bootstrap/src/minimal_editor.rs:120-241 MinimalEditor::process_byte *)
Definition process_byte (byte : N) (e : t) : outcome (bool * t) :=
  let e := e <| status := [] |> in
  match EditorKey.from_ascii byte with
  | None => Return (false, e)
  | Some key =>
      '(o, c) ← EditorCore.apply_key key (core e);
      let e := e <| core := c |> in
      '(should_quit, e) ←
        match o with
        | CoreOutcome.Continue => Return (false, e)
        | CoreOutcome.Changed => e ← adjust_viewport e; Return (false, e)
        | CoreOutcome.RequestExit _ => Return (true, e)
        | CoreOutcome.StatusMessage msg => Return (false, e <| status := msg |>)
        | CoreOutcome.RequestIo request =>
            match editor_io e with
            | Some io => serve_io request io e
            | None => Return (refuse_io request e)
            end
        end;
      Return (should_quit, if should_quit : bool then e else refresh_prompt_status e)
  end.
(* kernel_bootstrap/src/minimal_editor.rs:273-277 MinimalEditor::get_viewport_line *)
Definition get_viewport_line (viewport_row : nat) (e : t) : option Str.t :=
  TextBuffer.line (scroll_offset e + viewport_row) (EditorCore.buffer (core e)).
(* kernel_bootstrap/src/minimal_editor.rs:279-288 MinimalEditor::get_viewport_cursor *)
Definition get_viewport_cursor (e : t) : option Position.t :=
  let c := cursor e in
  if (scroll_offset e <=? Position.row c) && (Position.row c <? scroll_offset e + viewport_rows e)
  then Some (Position.new (Position.row c - scroll_offset e) (Position.col c)) else None.
End with_files.
Arguments t F : clear implicits.
End MinimalEditor.

(** * The bare-metal workspace

    [kernel_bootstrap/src/workspace.rs]: the session that takes the bytes of the keyboard, with the
    command line, the CLI, the palette, the editor and the log of output lines.  The kernel context is
    that of [BareKernel], the serial line is any [SerialLine], the files are any [BareFiles]. *)

Open Scope string_scope.
Open Scope list_scope.
Open Scope nat_scope.
#[local] Notation str := Str.of_string.

Module ComponentType.
(* kernel_bootstrap/src/workspace.rs:43-49 ComponentType *)
Inductive t := Editor | Cli | Shell.
#[global] Instance eq_dec : EqDecision t.
Proof. solve_decision. Defined.
(* kernel_bootstrap/src/workspace.rs:51-59 Display for ComponentType *)
Definition display (c : t) : string := match c with Editor => "Editor" | Cli => "CLI" | Shell => "Shell" end.
End ComponentType.

(** [array[..n]]. *)
Definition upto (n : nat) (l : list N) : outcome (list N) := if n <=? length l then Return (take n l) else Panic.

(** The keys of the letters, in order. *)
Definition letter_keys : list KeyCode.t :=
  [KeyCode.A; KeyCode.B; KeyCode.C; KeyCode.D; KeyCode.E; KeyCode.F; KeyCode.G; KeyCode.H; KeyCode.I; KeyCode.J;
   KeyCode.K; KeyCode.L; KeyCode.M; KeyCode.N; KeyCode.O; KeyCode.P; KeyCode.Q; KeyCode.R; KeyCode.S; KeyCode.T;
   KeyCode.U; KeyCode.V; KeyCode.W; KeyCode.X; KeyCode.Y; KeyCode.Z].
Definition digit_keys : list KeyCode.t :=
  [KeyCode.Num0; KeyCode.Num1; KeyCode.Num2; KeyCode.Num3; KeyCode.Num4; KeyCode.Num5; KeyCode.Num6; KeyCode.Num7;
   KeyCode.Num8; KeyCode.Num9].
(* kernel_bootstrap/src/workspace.rs:65-127 byte_to_key_event *)
Definition byte_to_key_code (byte : N) : option KeyCode.t :=
  match byte with
  | 0x1B => Some KeyCode.Escape
  | 10 | 13 => Some KeyCode.Enter
  | 0x08 | 0x7F => Some KeyCode.Backspace
  | 0x09 => Some KeyCode.Tab
  | 32 => Some KeyCode.Space
  | 0x10 => Some KeyCode.P
  | 0x80 => Some KeyCode.Up
  | 0x81 => Some KeyCode.Down
  | 45 => Some KeyCode.Minus
  | 61 => Some KeyCode.Equal
  | 91 => Some KeyCode.LeftBracket
  | 93 => Some KeyCode.RightBracket
  | 92 => Some KeyCode.Backslash
  | 59 => Some KeyCode.Semicolon
  | 39 => Some KeyCode.Quote
  | 44 => Some KeyCode.Comma
  | 46 => Some KeyCode.Period
  | 47 => Some KeyCode.Slash
  | 96 => Some KeyCode.Grave
  | _ =>
      if (97 <=? byte)%N && (byte <=? 122)%N then letter_keys !! N.to_nat (byte - 97)
      else if (65 <=? byte)%N && (byte <=? 90)%N then letter_keys !! N.to_nat (byte - 65)
      else if (48 <=? byte)%N && (byte <=? 57)%N then digit_keys !! N.to_nat (byte - 48)
      else None
  end%N.
(* kernel_bootstrap/src/workspace.rs:61-134 byte_to_key_event *)
Definition byte_to_key_event (byte : N) : option KeyEvent.t :=
  (λ code, KeyEvent.new code Modifiers.NONE KeyState.Pressed) <$> byte_to_key_code byte.

(** ** The log of output lines *)

(* kernel_bootstrap/src/workspace.rs:1315-1315 OUTPUT_MAX_LINES *)
Definition OUTPUT_MAX_LINES : nat := 64.
(* kernel_bootstrap/src/workspace.rs:1316-1316 OUTPUT_LINE_MAX *)
Definition OUTPUT_LINE_MAX : nat := 80.

Module OutputLine.
(* kernel_bootstrap/src/workspace.rs:1318-1322 OutputLine *)
Record t := mk { len : nat; bytes : list N }.
(* kernel_bootstrap/src/workspace.rs:1325-1330 OutputLine::empty *)
Definition empty : t := mk 0 (replicate OUTPUT_LINE_MAX 0%N).
(* kernel_bootstrap/src/workspace.rs:1332-1336 OutputLine::set_from_bytes *)
Definition set_from_bytes (b : list N) (l : t) : t :=
  let n := Nat.min (length b) OUTPUT_LINE_MAX in mk n (copy_prefix (N.of_nat n) b (bytes l)).
(* kernel_bootstrap/src/workspace.rs:1338-1340 OutputLine::as_bytes *)
Definition as_bytes (l : t) : list N := take (len l) (bytes l).
End OutputLine.

(** A fixed buffer with what is written so far in front. *)
(* kernel_bootstrap/src/workspace.rs:1343-1351 append_bytes *)
Definition append_bytes (buffer : list N * nat) (b : list N) : list N * nat :=
  let '(buf, n) := buffer in
  let count := Nat.min (length b) (length buf - n) in
  if 0 <? count then (take n buf ++ take count b ++ drop (n + count) buf, n + count) else (buf, n).

(** [split('\n')]. *)
Fixpoint split_newline (acc s : Str.t) : list Str.t :=
  match s with
  | [] => [reverse acc]
  | c :: s => if (c =? 10)%N then reverse acc :: split_newline [] s else split_newline (c :: acc) s
  end.
(** [trim_end_matches('\r')]. *)
Fixpoint drop_returns (s : Str.t) : Str.t := match s with 13%N :: s => drop_returns s | _ => s end.
Definition trim_returns (s : Str.t) : Str.t := reverse (drop_returns (reverse s)).
(** The pieces of [n] bytes. *)
Definition pieces (n : nat) (b : list N) : list (list N) :=
  (λ i, take n (drop (i * n) b)) <$> seq 0 ((length b + n - 1) / n).

(** ** The session *)

Module WorkspaceSession.
Section with_files.
Context {F : Type} `{BareFiles F}.

(** With the feature [console_vga], which is on by default. *)
(* kernel_bootstrap/src/workspace.rs:136-179 WorkspaceSession *)
Record t := mk {
  active_component : option ComponentType.t;
  editor : option (MinimalEditor.t F);
  tile_manager : TileManager.t;
  command_channel : SChannelId;
  response_channel : SChannelId;
  in_command_mode : bool;
  command_buffer : list N;
  command_len : nat;
  output_lines : list OutputLine.t;
  output_head : nat;
  output_count : nat;
  output_seq : N;
  filesystem : option F;
  palette_overlay : PaletteOverlayState.t;
  command_palette : CommandPalette.t;
  cli_active : bool;
  cli_buffer : list N;
  cli_len : nat;
  cli_cursor : nat;
  cli_hint_shown : bool;
  clear_requested : bool
}.
#[global] Instance rebuild_t : Rebuild t := λ s,
  mk (active_component s) (editor s) (tile_manager s) (command_channel s) (response_channel s) (in_command_mode s)
     (command_buffer s) (command_len s) (output_lines s) (output_head s) (output_count s) (output_seq s) (filesystem s)
     (palette_overlay s) (command_palette s) (cli_active s) (cli_buffer s) (cli_len s) (cli_cursor s) (cli_hint_shown s)
     (clear_requested s).
Definition CMD : nat := N.to_nat COMMAND_MAX.
Definition zeros : list N := replicate CMD 0%N.

(** A registered command; its handler always answers the same. *)
Definition command (id name description : string) (tags : list string) (category prompt : option string) (answer : string)
    (p : CommandPalette.t) : CommandPalette.t :=
  let d := CommandDescriptor.new (str id) (str name) (str description) (str <$> tags) in
  let d := match category with Some c => CommandDescriptor.with_category (str c) d | None => d end in
  let d := match prompt with
           | Some p => CommandDescriptor.with_prompt_pattern (str p) (CommandDescriptor.with_required_args d)
           | None => d
           end in
  CommandPalette.register_command d (λ _, Ok (str answer)) p.
(* kernel_bootstrap/src/workspace.rs:183-346 WorkspaceSession::new (the commands) *)
Definition registered_commands : CommandPalette.t :=
  foldl (λ p f, f p) CommandPalette.new
    [command "help" "Show Help" "Display available commands" ["help"; "commands"] None None
       "Available commands: help, open editor, quit";
     command "open_editor" "Open Editor" "Open the text editor" ["editor"; "edit"; "vim"] None None "Opening editor...";
     command "clear" "Clear Screen" "Clear workspace output" ["clear"; "cls"] (Some "Workspace") None "Clearing screen...";
     command "open_cli" "Switch to CLI" "Switch to the CLI component" ["cli"; "console"; "switch"] (Some "Workspace") None
       "Switching to CLI...";
     command "list" "List Components" "List active components" ["list"; "components"] (Some "Workspace") None
       "Listing components...";
     command "focus" "Focus Component" "Focus the next component" ["focus"; "cycle"] (Some "Workspace") (Some "focus ")
       "Focus command ready";
     command "quit" "Quit" "Exit the workspace" ["exit"; "close"; "q"] (Some "Workspace") None "Quitting...";
     command "halt" "Halt System" "Halt the system" ["halt"; "shutdown"] (Some "System") None "Halting...";
     command "boot" "Show Boot Info" "Display boot information" ["boot"; "info"] (Some "System") None "Boot info";
     command "mem" "Show Memory Info" "Display memory information" ["mem"; "memory"] (Some "System") None "Memory info";
     command "ticks" "Show System Ticks" "Display system tick count" ["ticks"; "time"] (Some "System") None "System ticks";
     command "ls" "List Files" "List filesystem entries" ["ls"; "files"] (Some "File") None "Listing files...";
     command "cat" "Show File Contents" "Display a file's contents" ["cat"; "read"] (Some "File") (Some "cat ")
       "Cat command ready";
     command "write" "Write File" "Create or update a file" ["write"; "save"] (Some "File") (Some "write ")
       "Write command ready"].
(* kernel_bootstrap/src/workspace.rs:182-377 WorkspaceSession::new *)
Definition new (command_channel response_channel : SChannelId) : t :=
  mk None None (TileManager.new VgaConsole.VGA_WIDTH VgaConsole.VGA_HEIGHT (VgaConsole.VGA_HEIGHT - 5)) command_channel response_channel true zeros 0
     (replicate OUTPUT_MAX_LINES OutputLine.empty) 0 0 0 None PaletteOverlayState.new registered_commands
     false zeros 0 0 false false.
(* kernel_bootstrap/src/workspace.rs:379-383 WorkspaceSession::set_filesystem *)
Definition set_filesystem (fs : F) (s : t) : t := s <| filesystem := Some fs |>.
(* kernel_bootstrap/src/workspace.rs:405-410 WorkspaceSession::reset_cli_buffer *)
Definition reset_cli_buffer (s : t) : t := s <| cli_buffer := zeros |> <| cli_len := 0 |> <| cli_cursor := 0 |>.

(** *** Output *)
(* kernel_bootstrap/src/workspace.rs:1272-1280 WorkspaceSession::push_output_line *)
Definition push_output_line (s : t) (b : list N) : outcome t :=
  line ← slice_get (output_lines s) (N.of_nat (output_head s));
  lines ← slice_set (output_lines s) (N.of_nat (output_head s)) (OutputLine.set_from_bytes b line);
  Return (s <| output_lines := lines |> <| output_head ::= λ h, (h + 1) mod OUTPUT_MAX_LINES |>
            <| output_count ::= λ n, if n <? OUTPUT_MAX_LINES then n + 1 else n |>
            <| output_seq ::= λ n, wrapping_add n 1 |>).
(* kernel_bootstrap/src/workspace.rs:1256-1270 WorkspaceSession::push_output_bytes *)
Definition push_output_bytes (s : t) (b : list N) : outcome t :=
  match b with [] => push_output_line s [] | _ => fold_outcome push_output_line (pieces OUTPUT_LINE_MAX b) s end.
(* kernel_bootstrap/src/workspace.rs:1195-1200 WorkspaceSession::append_output_text *)
Definition append_output_text (text : Str.t) (s : t) : outcome t :=
  fold_outcome (λ s line, push_output_bytes s (Utf8.as_bytes (trim_returns line))) (split_newline [] text) s.
(* kernel_bootstrap/src/workspace.rs:1181-1193 WorkspaceSession::output_line *)
Definition output_line (index : nat) (s : t) : outcome (option OutputLine.t) :=
  if output_count s <=? index then Return None
  else
    let start := if output_count s <=? output_head s then output_head s - output_count s
                 else OUTPUT_MAX_LINES + output_head s - output_count s in
    line ← slice_get (output_lines s) (N.of_nat ((start + index) mod OUTPUT_MAX_LINES));
    Return (Some line).
(* kernel_bootstrap/src/workspace.rs:1202-1209 WorkspaceSession::consume_clear_request *)
Definition consume_clear_request (s : t) : bool * t := (clear_requested s, s <| clear_requested := false |>).
(* kernel_bootstrap/src/workspace.rs:1211-1216 WorkspaceSession::request_clear *)
Definition request_clear (s : t) : t :=
  s <| clear_requested := true |> <| output_head := 0 |> <| output_count := 0 |> <| output_seq ::= λ n, wrapping_add n 1 |>.
(* kernel_bootstrap/src/workspace.rs:1156-1162 WorkspaceSession::prompt_prefix *)
Definition prompt_prefix (s : t) : string := if cli_active s then "CLI> " else "WS > ".
(* kernel_bootstrap/src/workspace.rs:1129-1137 WorkspaceSession::get_command_text *)
Definition get_command_text (s : t) : outcome (list N) :=
  if cli_active s then upto (cli_len s) (cli_buffer s) else upto (command_len s) (command_buffer s).
(* kernel_bootstrap/src/workspace.rs:1139-1144 WorkspaceSession::set_command_text *)
Definition set_command_text (text : Str.t) (s : t) : t :=
  let b := Utf8.as_bytes text in
  let n := Nat.min (length b) CMD in
  s <| command_buffer ::= copy_prefix (N.of_nat n) b |> <| command_len := n |>.
(* kernel_bootstrap/src/workspace.rs:1146-1154 WorkspaceSession::get_cursor_col *)
Definition get_cursor_col (s : t) : nat :=
  String.length (prompt_prefix s) + (if cli_active s then cli_cursor s else command_len s).
(* kernel_bootstrap/src/workspace.rs:1218-1221 WorkspaceSession::is_editor_active *)
Definition is_editor_active (s : t) : bool :=
  bool_decide (active_component s = Some ComponentType.Editor) && bool_decide (is_Some (editor s)).
(* kernel_bootstrap/src/workspace.rs:1296-1303 WorkspaceSession::mode_indicator *)
Definition mode_indicator (s : t) : string :=
  if cli_active s then "[CLI Mode] Ctrl+P: Commands" else "[Workspace] Ctrl+P: Commands".
(* kernel_bootstrap/src/workspace.rs:1305-1312 WorkspaceSession::status_line *)
Definition status_line (s : t) : string :=
  if cli_active s then "CLI: Enter run | Esc exit | Ctrl+P Commands" else "WS: Ctrl+P Commands | open editor | open cli | help".

(** *** The session, the kernel context and the serial line *)

Context {L : Type} `{SerialLine L}.
Definition st : Type := t * (KernelContext.t * L).
Definition out (b : list N) (w : st) : outcome st :=
  let '(s, (c, l)) := w in l ← serial_write_str b l; Return (s, (c, l)).
Definition out_byte (b : N) (w : st) : outcome st := let '(s, (c, l)) := w in l ← write_byte b l; Return (s, (c, l)).
(** [writeln!] on the serial line, of ASCII text. *)
Definition log (line : string) : st → outcome st := out (Utf8.bytes line ++ [10%N]).
Definition set (f : t → t) (w : st) : st := (f w.1, w.2).
Definition try_set (f : t → outcome t) (w : st) : outcome st := s ← f w.1; Return (s, w.2).

(* kernel_bootstrap/src/workspace.rs:1238-1241 WorkspaceSession::emit_line *)
Definition emit_line (text : Str.t) (w : st) : outcome st :=
  w ← out (Utf8.as_bytes text ++ [10%N]) w; try_set (append_output_text text) w.
Definition emit (text : string) : st → outcome st := emit_line (str text).
Definition emit_all (lines : list Str.t) (w : st) : outcome st := fold_outcome (λ w line, emit_line line w) lines w.
(** A line of at most [OUTPUT_LINE_MAX] bytes put together from parts; the text, or another if it is not
    UTF-8. *)
Definition assembled (parts : list (list N)) (other : string) : Str.t :=
  let '(buf, n) := foldl append_bytes (replicate OUTPUT_LINE_MAX 0%N, 0) parts in
  default (str other) (Utf8.from_utf8 (take n buf)).
(* kernel_bootstrap/src/workspace.rs:1243-1254 WorkspaceSession::emit_unknown_command *)
Definition emit_unknown_command (cmd : Str.t) : st → outcome st :=
  emit_line (assembled [Utf8.bytes "Unknown command: "; Utf8.as_bytes cmd; Utf8.bytes ". Type 'help' for help."] "Unknown command.").
(* kernel_bootstrap/src/workspace.rs:1282-1289 WorkspaceSession::emit_command_line *)
Definition emit_command_line (cmd : list N) (w : st) : outcome st :=
  emit_line (assembled [Utf8.bytes (prompt_prefix w.1); cmd] "WS > ") w.
(* kernel_bootstrap/src/workspace.rs:1124-1127 WorkspaceSession::show_prompt *)
Definition show_prompt (w : st) : outcome st := out (Utf8.bytes (prompt_prefix w.1)) w.
(* kernel_bootstrap/src/workspace.rs:385-403 WorkspaceSession::set_cli_active *)
Definition set_cli_active (active : bool) (w : st) : outcome st :=
  let w := set (λ s, s <| cli_active := active |>) w in
  if active then
    let w := set reset_cli_buffer w in
    w ← emit "CLI mode: type commands, `exit` to leave" w;
    if cli_hint_shown w.1 then Return w
    else w ← emit "Tip: Ctrl+P opens Commands." w; Return (set (λ s, s <| cli_hint_shown := true |>) w)
  else
    let w := if bool_decide (active_component w.1 = Some ComponentType.Cli)
             then set (λ s, s <| active_component := None |>) w else w in
    emit "Returned to workspace" w.

(** The editor gives its files back. *)
(* kernel_bootstrap/src/workspace.rs:1024-1030 WorkspaceSession::open_editor (the files) *)
Definition recover_filesystem (s : t) : t :=
  match editor s with
  | Some e =>
      let s := s <| editor := None |> in
      match MinimalEditor.editor_io e with
      | Some io => s <| filesystem := Some (BareMetalEditorIo.into_filesystem io) |>
      | None => s
      end
  | None => s
  end.
(* kernel_bootstrap/src/workspace.rs:1032-1065 WorkspaceSession::open_editor (with files) *)
Definition open_document (path : option Str.t) (fs : F) : outcome (MinimalEditor.t F * list Str.t) :=
  let e := MinimalEditor.new 23 in
  let io := BareMetalEditorIo.new fs in
  match path with
  | Some path =>
      '(r, io) ← BareMetalEditorIo.open path io;
      Return match r with
             | Ok (content, handle) =>
                 (MinimalEditor.set_editor_io io handle (MinimalEditor.load_content content e),
                  [str "Opened: " ++ path ++ str " [filesystem available]"])
             | Err _ =>
                 (MinimalEditor.set_editor_io io (BareMetalEditorIo.new_buffer (Some path)) e,
                  [str "File not found: " ++ path; str "Starting with empty buffer [filesystem available]"])
             end
  | None =>
      Return (MinimalEditor.set_editor_io io (BareMetalEditorIo.new_buffer None) e, [str "New buffer [filesystem available]"])
  end.
(* kernel_bootstrap/src/workspace.rs:1020-1092 WorkspaceSession::open_editor *)
Definition open_editor (path : option Str.t) (w : st) : outcome st :=
  let w := match filesystem w.1 with None => set recover_filesystem w | Some _ => w end in
  '(e, messages) ←
    match filesystem w.1 with
    | Some fs => open_document path fs
    | None => Return (MinimalEditor.new 23, [str "Warning: No filesystem - :w will not work"])
    end;
  let w := set (λ s, s <| filesystem := None |>) w in
  w ← emit_all messages w;
  let w := set (λ s, s <| editor := Some e |> <| active_component := Some ComponentType.Editor |>) w in
  emit "Keys: i=insert, Esc=normal, h/j/k/l=move, :q=quit, :w=save" w.
(* kernel_bootstrap/src/workspace.rs:1094-1122 WorkspaceSession::delegate_to_command_service *)
Definition delegate_to_command_service (command : string) (w : st) : outcome st :=
  let '(s, (c, l)) := w in
  let '(request_id, c) := KernelContext.take_message_id c in
  match CommandRequestB.from_bytes (take CMD (Utf8.bytes command)) request_id (response_channel s) with
  | None => Return (s, (c, l))
  | Some request =>
      '(r, c) ← KernelContext.send (command_channel s) (KernelMessage.CommandRequest request) c;
      emit (match r with Ok _ => "(Delegated to command service)" | Err _ => "Error: command queue full" end) (s, (c, l))
  end.

(** *** Commands *)

(** An operation on the files of the session. *)
Definition on_files {A} (f : F → outcome (result A TransactionError.t * F)) (fs : F) (w : st)
    : outcome (result A TransactionError.t * st) :=
  '(r, fs) ← f fs; Return (r, set (λ s, s <| filesystem := Some fs |>) w).
Definition no_files : string := "Error: filesystem not initialized".
(* kernel_bootstrap/src/workspace.rs:929-952 WorkspaceSession::run_command_line (ls) *)
Definition run_ls (w : st) : outcome st :=
  match filesystem w.1 with
  | None => emit no_files w
  | Some fs =>
      '(r, w) ← on_files list_files fs w;
      match r with
      | Ok [] => emit "(no files)" w
      | Ok files => emit_all files w
      | Err _ => emit "Error: failed to list files" w
      end
  end.
(* kernel_bootstrap/src/workspace.rs:954-989 WorkspaceSession::run_command_line (cat) *)
Definition run_cat (args : list Str.t) (w : st) : outcome st :=
  match args, filesystem w.1 with
  | [], _ => emit "Usage: cat <path>" w
  | _, None => emit no_files w
  | path :: _, Some fs =>
      '(r, w) ← on_files (read_file_by_name path) fs w;
      match r with
      | Ok content =>
          match Utf8.from_utf8 content with
          | Some text => emit_all (Str.lines text) w
          | None => emit "Error: file contains invalid UTF-8" w
          end
      | Err _ => emit_line (str "Error: file not found: " ++ path) w
      end
  end.
(* kernel_bootstrap/src/workspace.rs:990-1013 WorkspaceSession::run_command_line (write) *)
Definition run_write (args : list Str.t) (w : st) : outcome st :=
  match args, filesystem w.1 with
  | [], _ => emit "Usage: write <path> <text>" w
  | _, None => emit no_files w
  | path :: words, Some fs =>
      '(r, w) ← on_files (write_file_by_name path (Utf8.as_bytes (join_with [32%N] words))) fs w;
      match r with
      | Ok _ => emit_line (str "Wrote to " ++ path) w
      | Err _ => emit "Error: failed to write file" w
      end
  end.
(* kernel_bootstrap/src/workspace.rs:835-854 WorkspaceSession::run_command_line (help) *)
Definition help_lines : list string :=
  ["Workspace Commands:"; "help           - Show this help"; "open <what>    - Open editor or CLI";
   "list           - List components"; "focus <id>     - Focus component"; "clear | cls    - Clear the screen";
   "quit           - Exit component"; "halt           - Halt system"; ""; "File Commands:"; "ls             - List files";
   "cat <path>     - Show file contents"; "write <path> <text> - Create/update file"; ""; "System Commands:";
   "boot           - Show boot info"; "mem            - Show memory info"; "ticks          - Show system ticks"].
Definition open_cli (w : st) : outcome st :=
  set_cli_active true (set (λ s, s <| active_component := Some ComponentType.Cli |>) w).
Definition is_word (cmd : Str.t) (word : string) : bool := bool_decide (cmd = str word).
(** The [match] on the command; [halt] does not come back. *)
(* kernel_bootstrap/src/workspace.rs:834-1017 WorkspaceSession::run_command_line (the commands) *)
Definition run_word (cmd : Str.t) (args : list Str.t) (w : st) : outcome st :=
  if is_word cmd "help" then emit_all (str <$> help_lines) w
  else if is_word cmd "open" then
    match args with
    | what :: args =>
        if is_word what "editor" then open_editor (head args) w
        else if is_word what "cli" then open_cli w
        else emit "Usage: open editor [path] | open cli" w
    | [] => emit "Usage: open editor [path] | open cli" w
    end
  else if is_word cmd "list" then
    w ← emit "Active components:" w;
    emit match active_component w.1 with
         | Some ComponentType.Editor => "  - Editor"
         | Some ComponentType.Cli => "  - Cli"
         | Some ComponentType.Shell => "  - Shell"
         | None => "  (none)"
         end w
  else if is_word cmd "focus" then
    let w := set (λ s, s <| tile_manager ::= TileManager.focus_next |>) w in
    emit match TileManager.focused (tile_manager w.1) with
         | TileId.Top => "Focused: Top" | TileId.Bottom => "Focused: Bottom" end w
  else if is_word cmd "quit" then
    if cli_active w.1 then Return w
    else
      match active_component w.1 with
      | Some _ => emit "Closed component" (set (λ s, s <| active_component := None |>) w)
      | None => emit "No active component (use 'halt' to stop)" w
      end
  else if is_word cmd "editor" then open_editor (head args) w
  else if is_word cmd "halt" then w ← emit "Halting system..." w; Diverge
  else if is_word cmd "boot" then delegate_to_command_service "boot" w
  else if is_word cmd "mem" then delegate_to_command_service "mem" w
  else if is_word cmd "ticks" then delegate_to_command_service "ticks" w
  else if is_word cmd "ls" then run_ls w
  else if is_word cmd "cat" then run_cat args w
  else if is_word cmd "write" then run_write args w
  else emit_unknown_command cmd w.
(* kernel_bootstrap/src/workspace.rs:807-1018 WorkspaceSession::run_command_line *)
Definition run_command_line (command : Str.t) (w : st) : outcome st :=
  match split_whitespace command with
  | [] => Return w
  | cmd :: args =>
      if is_word cmd "clear" || is_word cmd "cls" then Return (set request_clear w)
      else
        w ← emit_command_line (Utf8.as_bytes command) w;
        if cli_active w.1 && (is_word cmd "exit" || is_word cmd "quit") then set_cli_active false w
        else run_word cmd args w
  end.
(** The text of a buffer: [from_utf8(..).unwrap_or("").trim()]. *)
Definition buffer_text (buffer : list N) (n : nat) : outcome Str.t :=
  b ← upto n buffer; Return (Str.trim (default [] (Utf8.from_utf8 b))).
(* kernel_bootstrap/src/workspace.rs:784-805 WorkspaceSession::execute_command *)
Definition execute_command (w : st) : outcome st :=
  command ← buffer_text (command_buffer w.1) (command_len w.1);
  match command with
  | [] => show_prompt w
  | _ =>
      w ← run_command_line (default [] (Utf8.from_utf8 (take CMD (Utf8.as_bytes command)))) w;
      show_prompt w
  end.

(** *** Input *)

(* kernel_bootstrap/src/workspace.rs:469-527 WorkspaceSession::process_input (a palette command) *)
Definition run_palette_command (id : CommandId.t) (w : st) : outcome st :=
  let cmd := CommandId.as_str id in
  let close := set (λ s, s <| palette_overlay ::= PaletteOverlayState.close |>) in
  w ← out (Utf8.as_bytes (str "  palette_action=execute cmd=" ++ cmd) ++ [10%N]) w;
  if is_word cmd "open_editor" then w ← open_editor None w; Return (close w)
  else if is_word cmd "open_cli" then w ← open_cli w; Return (close w)
  else if is_word cmd "quit" then
    w ← emit "Closed component" (set (λ s, s <| active_component := None |>) w); Return (close w)
  else
    match CommandPalette.get_command id (command_palette w.1) ≫= CommandDescriptor.prompt_pattern with
    | Some pattern => Return (close (set (set_command_text pattern) w))
    | None =>
        let '(kind, text) := match CommandPalette.execute_command id [] (command_palette w.1) with
                             | Ok msg => ("  palette_result=success msg=", msg)
                             | Err err => ("  palette_result=error err=", err)
                             end in
        w ← out (Utf8.bytes kind ++ Utf8.as_bytes text ++ [10%N]) w;
        w ← try_set (append_output_text text) w;
        w ← (if existsb (is_word cmd) ["help"; "list"; "halt"; "boot"; "mem"; "ticks"; "ls"]
             then execute_command (set (set_command_text cmd) w) else Return w);
        Return (close w)
    end.
(* kernel_bootstrap/src/workspace.rs:451-542 WorkspaceSession::process_input (the palette) *)
Definition palette_input `{Lowercase} (byte : N) (w : st) : outcome (bool * st) :=
  w ← log "  action=palette_input" w;
  match byte_to_key_event byte with
  | None => w ← log "  palette_action=unknown_byte" w; Return (true, w)
  | Some key_event =>
      '(action, p) ← PaletteOverlayState.handle_palette_key (command_palette w.1) key_event (palette_overlay w.1);
      let w := set (λ s, s <| palette_overlay := p |>) w in
      match action with
      | PaletteKeyAction.Close =>
          w ← log "  palette_action=close" w;
          Return (true, set (λ s, s <| palette_overlay ::= PaletteOverlayState.close |>) w)
      | PaletteKeyAction.Execute id => w ← run_palette_command id w; Return (true, w)
      | PaletteKeyAction.Consumed => w ← log "  palette_action=consumed" w; Return (true, w)
      | PaletteKeyAction.None_ => w ← log "  palette_action=none" w; Return (false, w)
      end
  end.
Definition position_debug (p : Position.t) : string :=
  Debug.struct "Position" [("row", pretty (N.of_nat (Position.row p))); ("col", pretty (N.of_nat (Position.col p)))].
(** The bytes that count as typing for the assertion of debug builds. *)
(* kernel_bootstrap/src/workspace.rs:585-601 WorkspaceSession::process_input (is_normal_typing) *)
Definition is_normal_typing (byte : N) : bool :=
  (((97 <=? byte) && (byte <=? 122)) || ((65 <=? byte) && (byte <=? 90)) || ((48 <=? byte) && (byte <=? 57)))%N
  || existsb (N.eqb byte) (Utf8.bytes " .,;:'-_!?" ++ [34%N]).
(** [debug_assert!(line_delta <= 1)]. *)
(* kernel_bootstrap/src/workspace.rs:572-609 WorkspaceSession::process_input (the assertion) *)
Definition assert_one_line (byte : N) (before after : Position.t) (mode : EditorMode.t) : outcome unit :=
  let delta := (Position.row after - Position.row before) + (Position.row before - Position.row after) in
  let is_editing := match mode with EditorMode.Insert | EditorMode.Command => true | _ => false end in
  if is_normal_typing byte && is_editing && negb (bool_decide (after = before)) && (1 <? delta) then Panic else Return tt.
(* kernel_bootstrap/src/workspace.rs:554-626 WorkspaceSession::process_input (the editor) *)
Definition editor_input (byte : N) (e : MinimalEditor.t F) (w : st) : outcome (bool * st) :=
  let before := MinimalEditor.cursor e in
  w ← log ("  action=process_byte_start cursor=" +:+ position_debug before) w;
  '(should_quit, e) ← MinimalEditor.process_byte byte e;
  let w := set (λ s, s <| editor := Some e |>) w in
  w ← log ("  action=process_byte_end cursor=" +:+ position_debug (MinimalEditor.cursor e)
           +:+ " dirty=" +:+ Debug.boolean (MinimalEditor.is_dirty e)) w;
  _ ← assert_one_line byte before (MinimalEditor.cursor e) (MinimalEditor.mode e);
  if should_quit : bool then
    let w := set (λ s, recover_filesystem (s <| active_component := None |>)) w in
    w ← out ([13; 10]%N ++ Utf8.bytes "Editor closed" ++ [13; 10]%N) w;
    w ← show_prompt w;
    Return (true, w)
  else Return (true, w).
(** The erasing sequence. *)
Definition erase : list N := [8; 32; 8]%N.
(* kernel_bootstrap/src/workspace.rs:658-673 WorkspaceSession::process_input (CLI backspace) *)
Definition cli_backspace (w : st) : outcome st :=
  let s := w.1 in
  if (0 <? cli_cursor s) && (0 <? cli_len s) then
    buffer ← (if cli_cursor s <? cli_len s
              then fold_outcome (λ b i, x ← slice_get b (N.of_nat i); slice_set b (N.of_nat (i - 1)) x)
                     (seq (cli_cursor s) (cli_len s - cli_cursor s)) (cli_buffer s)
              else Return (cli_buffer s));
    out erase (set (λ s, s <| cli_buffer := buffer |> <| cli_len ::= λ n, n - 1 |> <| cli_cursor ::= λ n, n - 1 |>) w)
  else Return w.
(* kernel_bootstrap/src/workspace.rs:682-699 WorkspaceSession::process_input (CLI insertion) *)
Definition cli_insert (byte : N) (w : st) : outcome st :=
  let s := w.1 in
  if cli_len s <? CMD then
    buffer ← (if cli_cursor s <? cli_len s
              then fold_outcome (λ b i, x ← slice_get b (N.of_nat i); slice_set b (N.of_nat (i + 1)) x)
                     (reverse (seq (cli_cursor s) (cli_len s - cli_cursor s))) (cli_buffer s)
              else Return (cli_buffer s));
    buffer ← slice_set buffer (N.of_nat (cli_cursor s)) byte;
    out_byte byte (set (λ s, s <| cli_buffer := buffer |> <| cli_cursor ::= S |> <| cli_len ::= S |>) w)
  else Return w.
Definition printable (byte : N) : bool := ((0x20 <=? byte) && (byte <? 0x7F))%N.
(* kernel_bootstrap/src/workspace.rs:628-702 WorkspaceSession::process_input (the CLI) *)
Definition cli_input (byte : N) (w : st) : outcome (bool * st) :=
  w ← log "  action=cli_input" w;
  match byte with
  | 13 | 10 =>
      w ← out [13; 10] w;
      command ← buffer_text (cli_buffer w.1) (cli_len w.1);
      w ← match command with [] => Return w | _ => run_command_line command w end;
      let w := set reset_cli_buffer w in
      w ← (if cli_active w.1 then show_prompt w else Return w);
      Return (true, w)
  | 0x1B => w ← out [13; 10] w; w ← set_cli_active false w; w ← show_prompt w; Return (true, w)
  | 0x08 | 0x7F => w ← cli_backspace w; Return (true, w)
  | 0x80 | 0x81 => Return (true, w)
  | _ => if printable byte then w ← cli_insert byte w; Return (true, w) else Return (false, w)
  end%N.
(* kernel_bootstrap/src/workspace.rs:704-730 WorkspaceSession::process_input (the command line) *)
Definition command_input (byte : N) (w : st) : outcome (bool * st) :=
  match byte with
  | 13 | 10 =>
      w ← out [13; 10] w; w ← execute_command w;
      Return (true, set (λ s, s <| command_len := O |>) w)
  | 0x08 | 0x7F =>
      if (0 <? command_len w.1)%nat
      then w ← out erase (set (λ s, s <| command_len ::= λ n, (n - 1)%nat |>) w); Return (true, w)
      else Return (true, w)
  | _ =>
      if printable byte then
        if (command_len w.1 <? length (command_buffer w.1))%nat then
          buffer ← slice_set (command_buffer w.1) (N.of_nat (command_len w.1)) byte;
          w ← out_byte byte (set (λ s, s <| command_buffer := buffer |> <| command_len ::= S |>) w);
          Return (true, w)
        else Return (true, w)
      else Return (false, w)
  end%N.
Definition tile_debug (t : TileId.t) : string := match t with TileId.Top => "Top" | TileId.Bottom => "Bottom" end.
(* kernel_bootstrap/src/workspace.rs:432-449 WorkspaceSession::process_input (Ctrl+P) *)
Definition open_palette `{Lowercase} (w : st) : outcome st :=
  w ← log "  action=open_palette" w;
  let s := w.1 in
  let focus := if bool_decide (active_component s = Some ComponentType.Editor) then FocusTarget.Editor
               else if in_command_mode s then FocusTarget.Cli else FocusTarget.None_ in
  p ← PaletteOverlayState.update_query (command_palette s) []
        (PaletteOverlayState.open_with_context focus (cli_active s) (palette_overlay s));
  Return (set (λ s, s <| palette_overlay := p |>) w).
(* kernel_bootstrap/src/workspace.rs:412-731 WorkspaceSession::process_input *)
Definition process_input `{Lowercase} (byte : N) (w : st) : outcome (bool * st) :=
  let focused := TileManager.focused (tile_manager w.1) in
  w ← log "route_input:" w;
  w ← log ("  key={byte=0x" +:+ Utf8.hex byte +:+ "}") w;
  w ← log ("  focus_tile={" +:+ tile_debug focused +:+ "}") w;
  if (byte =? 0x10)%N && negb (PaletteOverlayState.is_open (palette_overlay w.1)) then
    w ← open_palette w; Return (true, w)
  else if PaletteOverlayState.is_open (palette_overlay w.1) then palette_input byte w
  else
    let in_editor := bool_decide (active_component w.1 = Some ComponentType.Editor) in
    if in_editor && negb (bool_decide (focused = TileId.Top)) then
      w ← log "  consumed_by=none (focus mismatch)" w; Return (false, w)
    else
      match (if in_editor then editor w.1 else None) with
      | Some e => editor_input byte e w
      | None => if cli_active w.1 then cli_input byte w else command_input byte w
      end.
(** A session: the bytes, one after the other. *)
Fixpoint process_all `{Lowercase} (bytes : list N) (w : st) : outcome st :=
  match bytes with
  | [] => Return w
  | b :: bytes => '(_, w) ← process_input b w; process_all bytes w
  end.
End with_files.
Arguments t F : clear implicits.
End WorkspaceSession.
