(* ===== verification/BareWorkspaceProps.v ===== *)
(** * Properties of the bare-metal workspace

    The log shows the last 64 lines; a session that stores no empty text and does not halt runs to the
    end of its input, whatever is typed, with any files that are a map ([BareFilesSpec]). *)

From S2P Require Import Prelude CoreTypes Debug Storage BlockStore BlockProps Editor EditorProps Text Input Palette VgaConsole BareMem BareIo BareKernel BareKernelProps BareFs BareWorkspace.
Open Scope string_scope.
Open Scope list_scope.
Open Scope nat_scope.
#[local] Arguments Nat.ltb : simpl never.
#[local] Arguments Nat.leb : simpl never.
#[local] Arguments Nat.modulo : simpl never.
#[local] Arguments OUTPUT_MAX_LINES : simpl never.
#[local] Arguments OUTPUT_LINE_MAX : simpl never.
#[local] Notation str := Str.of_string.

Module BareSessionSpec.
Import WorkspaceSession.

(** ** The log *)

Section log.
Context {F : Type} `{BareFiles F}.
Implicit Types s : t F.

(** The fields of the log. *)
Definition output : Type := list OutputLine.t * nat * nat * N.
Definition output_of s : output := (output_lines s, output_head s, output_count s, output_seq s).
Definition with_output (o : output) s : t F :=
  s <| output_lines := o.1.1.1 |> <| output_head := o.1.1.2 |> <| output_count := o.1.2 |> <| output_seq := o.2 |>.
Record output_ok (o : output) : Prop := {
  oo_lines : length o.1.1.1 = OUTPUT_MAX_LINES;
  oo_sizes : Forall (λ l, length (OutputLine.bytes l) = OUTPUT_LINE_MAX) o.1.1.1;
  oo_head : o.1.1.2 < OUTPUT_MAX_LINES;
  oo_count : o.1.2 ≤ OUTPUT_MAX_LINES
}.
(** The place of line [i], the oldest first, and the lines. *)
Definition place (o : output) (i : nat) : nat := (OUTPUT_MAX_LINES + o.1.1.2 - o.1.2 + i) mod OUTPUT_MAX_LINES.
Definition shown (o : output) : list (list N) :=
  (λ i, OutputLine.as_bytes (nth (place o i) o.1.1.1 OutputLine.empty)) <$> seq 0 o.1.2.
Definition keep (l : list (list N)) : list (list N) := drop (length l - OUTPUT_MAX_LINES) l.

Lemma set_from_bytes_shows b l :
  length (OutputLine.bytes l) = OUTPUT_LINE_MAX →
  OutputLine.as_bytes (OutputLine.set_from_bytes b l) = take OUTPUT_LINE_MAX b ∧
  length (OutputLine.bytes (OutputLine.set_from_bytes b l)) = OUTPUT_LINE_MAX.
Proof.
  intros Hl. unfold OutputLine.as_bytes, OutputLine.set_from_bytes, copy_prefix. simpl. rewrite Nat2N.id. split.
  - rewrite take_app_le by (rewrite length_take; lia). rewrite take_take, Nat.min_id.
    destruct (Nat.le_ge_cases (length b) OUTPUT_LINE_MAX); [rewrite Nat.min_l by done; by rewrite !take_ge|by rewrite Nat.min_r].
  - rewrite length_app, length_take, length_drop. lia.
Qed.
Lemma push_line_shows s b :
  output_ok (output_of s) → ∃ o, push_output_line s b = Return (with_output o s) ∧ output_ok o ∧
    shown o = keep (shown (output_of s) ++ [take OUTPUT_LINE_MAX b]).
Proof.
  intros [H1 H2 H3 H4]. simpl in *. unfold push_output_line, slice_get. rewrite Nat2N.id.
  destruct (lookup_lt_is_Some_2 (output_lines s) (output_head s)) as [line El]; [lia|]. rewrite El. cbn [expect mbind outcome_bind].
  rewrite (proj2 (slice_set_Return (output_lines s) (N.of_nat (output_head s)) (OutputLine.set_from_bytes b line)
    (<[output_head s := OutputLine.set_from_bytes b line]> (output_lines s)))) by (rewrite Nat2N.id; split; [lia|done]).
  cbn [mbind outcome_bind].
  set (n' := if output_count s <? OUTPUT_MAX_LINES then output_count s + 1 else output_count s).
  exists (<[output_head s := OutputLine.set_from_bytes b line]> (output_lines s), (output_head s + 1) mod OUTPUT_MAX_LINES, n',
          wrapping_add (output_seq s) 1).
  destruct (set_from_bytes_shows b line) as [Es El']; [by apply (Forall_lookup_1 _ _ _ _ H2 El)|].
  split; [done|]. split.
  { split; simpl; [by rewrite length_insert|by apply Forall_insert|apply Nat.mod_upper_bound; done|].
    unfold n'. destruct (Nat.ltb_spec (output_count s) OUTPUT_MAX_LINES); lia. }
  assert (length (shown (output_of s)) = output_count s) as Hlen by (unfold shown; by rewrite length_fmap, length_seq).
  apply list_eq. intros i. unfold keep. rewrite lookup_drop, length_app, Hlen. simpl (length [_]).
  assert (output_count s + 1 - OUTPUT_MAX_LINES = output_count s + 1 - n') as Hd.
  { unfold n'. destruct (Nat.ltb_spec (output_count s) OUTPUT_MAX_LINES); lia. }
  rewrite Hd. destruct (Nat.lt_ge_cases i n') as [Hi|Hi].
  2: { rewrite (proj2 (lookup_ge_None _ _)) by (unfold shown; rewrite length_fmap, length_seq; simpl; lia).
       symmetry. apply lookup_ge_None. rewrite length_app, Hlen. simpl. lia. }
  unfold shown at 1. rewrite list_lookup_fmap, lookup_seq_lt by (simpl; lia). simpl (_ <$> Some _). unfold place. cbn [fst snd].
  assert (n' = output_count s + 1 ∨ (n' = output_count s ∧ output_count s = OUTPUT_MAX_LINES)) as Hn'.
  { unfold n'. destruct (Nat.ltb_spec (output_count s) OUTPUT_MAX_LINES); [left; lia|right; lia]. }
  assert (1 ≤ n') as Hpos by (destruct Hn' as [->|[-> ->]]; [lia|unfold OUTPUT_MAX_LINES; lia]). clearbody n'.
  assert ((OUTPUT_MAX_LINES + (output_head s + 1) mod OUTPUT_MAX_LINES - n' + i) mod OUTPUT_MAX_LINES
    = (OUTPUT_MAX_LINES + output_head s + 1 - n' + i) mod OUTPUT_MAX_LINES) as ->.
  { destruct (Nat.eq_dec (output_head s + 1) OUTPUT_MAX_LINES) as [E|E].
    - rewrite E, Nat.Div0.mod_same, Nat.add_0_r. replace (OUTPUT_MAX_LINES + output_head s + 1 - n' + i)
        with (OUTPUT_MAX_LINES - n' + i + 1 * OUTPUT_MAX_LINES) by lia. by rewrite Nat.Div0.mod_add.
    - rewrite (Nat.mod_small (output_head s + 1)) by lia. f_equal. }
  destruct (Nat.eq_dec (i + 1) n') as [Hlast|Hlast].
  - rewrite lookup_app_r by lia. rewrite Hlen. replace (output_count s + 1 - n' + i - output_count s) with 0 by lia.
    replace (OUTPUT_MAX_LINES + output_head s + 1 - n' + i) with (output_head s + 1 * OUTPUT_MAX_LINES) by lia.
    rewrite Nat.Div0.mod_add, Nat.mod_small by done. rewrite nth_lookup, list_lookup_insert_eq by lia. simpl. by rewrite Es.
  - rewrite lookup_app_l by lia. unfold shown. rewrite list_lookup_fmap, lookup_seq_lt by (simpl; lia). simpl (_ <$> Some _). do 2 f_equal. unfold place, output_of. cbn [fst snd Nat.add].
    replace (OUTPUT_MAX_LINES + output_head s - output_count s + (output_count s + 1 - n' + i))
      with (OUTPUT_MAX_LINES + output_head s + 1 - n' + i) by lia.
    set (j := (OUTPUT_MAX_LINES + output_head s + 1 - n' + i) mod OUTPUT_MAX_LINES).
    assert (j ≠ output_head s) as Hj.
    { unfold j. intros E. destruct (Nat.lt_ge_cases (OUTPUT_MAX_LINES + output_head s + 1 - n' + i) OUTPUT_MAX_LINES) as [Hlt|Hge].
      - rewrite Nat.mod_small in E by done. lia.
      - assert (OUTPUT_MAX_LINES + output_head s + 1 - n' + i = (output_head s + 1 + i - n') + 1 * OUTPUT_MAX_LINES) as E' by lia.
        rewrite E', Nat.Div0.mod_add, Nat.mod_small in E by lia. lia. }
    rewrite !nth_lookup, list_lookup_insert_ne by done. done.
Qed.
Lemma keep_keep a b : keep (keep a ++ b) = keep (a ++ b).
Proof.
  unfold keep. rewrite !length_app, length_drop. rewrite !drop_app, drop_drop, !length_drop. f_equal; f_equal; lia.
Qed.
Lemma keep_short l : length l ≤ OUTPUT_MAX_LINES → keep l = l.
Proof. intros Hl. unfold keep. by rewrite (proj2 (Nat.sub_0_le _ _) Hl). Qed.
Lemma shown_short o : output_ok o → keep (shown o) = shown o.
Proof. intros Ho. apply keep_short. unfold shown. rewrite length_fmap, length_seq. apply Ho. Qed.
Lemma with_output_twice o o' s : with_output o' (with_output o s) = with_output o' s.
Proof. done. Qed.
Lemma output_of_with o s : output_of (with_output o s) = o.
Proof. by destruct o as [[[? ?] ?] ?]. Qed.

(** Many pushes. *)
Lemma push_all_shows {A} (f : t F → A → outcome (t F)) (g : A → list (list N)) l s :
  (∀ s a, output_ok (output_of s) → ∃ o, f s a = Return (with_output o s) ∧ output_ok o ∧
     shown o = keep (shown (output_of s) ++ g a)) →
  output_ok (output_of s) →
  ∃ o, fold_outcome f l s = Return (with_output o s) ∧ output_ok o ∧ shown o = keep (shown (output_of s) ++ (l ≫= g)).
Proof.
  intros Hf. revert s. induction l as [|a l IH]; intros s Ho.
  { exists (output_of s). split; [by destruct s|]. split; [done|]. simpl. by rewrite app_nil_r, shown_short. }
  cbn [fold_outcome]. destruct (Hf s a Ho) as (o & -> & Ho1 & E1). cbn [mbind outcome_bind].
  destruct (IH (with_output o s)) as (o' & -> & Ho2 & E2); [by rewrite output_of_with|].
  exists o'. split; [done|]. split; [done|]. rewrite E2, output_of_with, E1. simpl. by rewrite keep_keep, <-app_assoc.
Qed.
(** What a text leaves in the log. *)
Definition line_pieces (b : list N) : list (list N) := match b with [] => [[]] | _ => pieces OUTPUT_LINE_MAX b end.
Definition text_pieces (text : Str.t) : list (list N) :=
  split_newline [] text ≫= λ line, line_pieces (Utf8.as_bytes (trim_returns line)).
Lemma pieces_fit b p : p ∈ pieces OUTPUT_LINE_MAX b → take OUTPUT_LINE_MAX p = p.
Proof.
  intros (i & -> & _)%list_elem_of_fmap. apply take_ge. rewrite length_take. lia.
Qed.
Lemma push_bytes_shows s b :
  output_ok (output_of s) → ∃ o, push_output_bytes s b = Return (with_output o s) ∧ output_ok o ∧
    shown o = keep (shown (output_of s) ++ line_pieces b).
Proof.
  intros Ho. unfold push_output_bytes, line_pieces. destruct b as [|x b]; [by apply push_line_shows|].
  destruct (push_all_shows push_output_line (λ p, [take OUTPUT_LINE_MAX p]) (pieces OUTPUT_LINE_MAX (x :: b)) s) as (o & E & Ho' & Es);
    [intros; by apply push_line_shows|done|].
  exists o. split; [done|]. split; [done|]. rewrite Es. do 2 f_equal. generalize (pieces_fit (x :: b)).
  generalize (pieces OUTPUT_LINE_MAX (x :: b)). clear. induction l as [|p l IH]; intros Hp; [done|]. simpl. f_equal; [apply Hp; constructor|].
  apply IH. intros q Hq. apply Hp. by constructor.
Qed.
Lemma append_text_shows text s :
  output_ok (output_of s) → ∃ o, append_output_text text s = Return (with_output o s) ∧ output_ok o ∧
    shown o = keep (shown (output_of s) ++ text_pieces text).
Proof.
  intros Ho. unfold append_output_text, text_pieces.
  apply (push_all_shows _ (λ line, line_pieces (Utf8.as_bytes (trim_returns line)))); [|done].
  intros s' line Ho'. by apply push_bytes_shows.
Qed.
(** Reading the log. *)
Lemma output_line_shows i s :
  output_ok (output_of s) → ∃ r, output_line i s = Return r ∧ OutputLine.as_bytes <$> r = shown (output_of s) !! i.
Proof.
  intros [H1 H2 H3 H4]. unfold output_line, output_of in *. simpl in *. unfold shown. rewrite list_lookup_fmap. cbn [fst snd].
  destruct (Nat.leb_spec (output_count s) i) as [Hi|Hi].
  { eexists. split; [done|]. by rewrite (proj2 (lookup_ge_None _ _)) by (rewrite length_seq; lia). }
  rewrite lookup_seq_lt by done. unfold slice_get. rewrite Nat2N.id.
  set (start := if _ <=? _ then _ else _). assert ((start + i) mod OUTPUT_MAX_LINES = place (output_of s) i) as ->.
  { unfold start, place, output_of. cbn [fst snd]. destruct (Nat.leb_spec (output_count s) (output_head s)); [|done].
    replace (OUTPUT_MAX_LINES + output_head s - output_count s + i)
      with (output_head s - output_count s + i + 1 * OUTPUT_MAX_LINES) by lia. by rewrite Nat.Div0.mod_add. }
  assert (place (output_of s) i < OUTPUT_MAX_LINES) as Hp by (apply Nat.mod_upper_bound; done).
  destruct (lookup_lt_is_Some_2 (output_lines s) (place (output_of s) i)) as [line El]; [by rewrite H1|].
  rewrite El. cbn. eexists. split; [done|]. simpl. do 2 f_equal. fold (output_of s). rewrite nth_lookup. by rewrite El.
Qed.

(** The log shows the last 64 lines.  Whatever texts are appended to a well-formed log, it stays well
    formed and reading it by index gives, oldest first, the last 64 of all the lines there were: those
    shown before and the lines of the texts, each cut into pieces of 80 bytes. *)
Theorem log_shows_last_lines s (texts : list Str.t) :
  output_ok (output_of s) →
  ∃ s', fold_outcome (λ s text, append_output_text text s) texts s = Return s' ∧ output_ok (output_of s') ∧
    ∀ i, ∃ r, output_line i s' = Return r ∧
      OutputLine.as_bytes <$> r = keep (shown (output_of s) ++ (texts ≫= text_pieces)) !! i.
Proof.
  intros Ho. destruct (push_all_shows (λ s text, append_output_text text s) text_pieces texts s) as (o & -> & Ho' & E);
    [intros; by apply append_text_shows|done|].
  exists (with_output o s). split; [done|]. rewrite output_of_with. split; [done|]. intros i.
  destruct (output_line_shows i (with_output o s)) as (r & -> & Hr); [by rewrite output_of_with|]. exists r. split; [done|].
  by rewrite Hr, output_of_with, E.
Qed.
End log.

(** ** Sessions *)

(** A serial line that takes every byte. *)
Class LineSpec (L : Type) `{SerialLine L} := { line_takes b l : ∃ l', write_byte b l = Return l' }.

Section session.
Context {F : Type} {HF : BareFiles F} {HFS : BareFilesSpec F} {L : Type} {HL : SerialLine L} {HLS : LineSpec L} {HLow : Lowercase}.
Implicit Types (w : st (F := F) (L := L)) (s : t F).

Definition bytes_ok (b : list N) : Prop := Forall (λ x, x < 128)%N b.
(** Files for [n] more writes, all of them ASCII. *)
Definition files_ok (n : nat) (fs : F) : Prop := ∃ m, stores n fs m ∧ map_Forall (λ _ c, bytes_ok c) m.
Record editor_ok (n : nat) (e : MinimalEditor.t F) : Prop := {
  ek_core : EditorSafety.state_ok (MinimalEditor.core e);
  ek_rows : MinimalEditor.viewport_rows e ≠ 0;
  ek_io io : MinimalEditor.editor_io e = Some io → files_ok n (BareMetalEditorIo.fs io)
}.
Definition context_ok (c : KernelContext.t) : Prop :=
  length (KernelContext.channels c) = 16 ∧ Forall ChannelSpec.wf (KernelContext.channels c).
Record ok (n : nat) w : Prop := {
  ok_output : output_ok (output_of w.1);
  ok_command : length (command_buffer w.1) = CMD ∧ command_len w.1 ≤ CMD ∧ bytes_ok (command_buffer w.1);
  ok_cli : length (cli_buffer w.1) = CMD ∧ cli_len w.1 ≤ CMD ∧ cli_cursor w.1 = cli_len w.1 ∧ bytes_ok (cli_buffer w.1);
  ok_palette : command_palette w.1 = registered_commands;
  ok_files fs : filesystem w.1 = Some fs → files_ok n fs;
  ok_editor e : editor w.1 = Some e → editor_ok n e;
  ok_context : context_ok w.2.1
}.
Lemma files_weaken n fs : files_ok (S n) fs → files_ok n fs.
Proof. intros (m & Hs & Hm). exists m. split; [by apply stores_weaken|done]. Qed.
Lemma editor_weaken n e : editor_ok (S n) e → editor_ok n e.
Proof. intros [E1 E2 E3]. split; [done|done|]. intros io Hio. by apply files_weaken, E3. Qed.
Lemma ok_weaken n w : ok (S n) w → ok n w.
Proof. intros []. split; try done; intros; [apply files_weaken|apply editor_weaken]; auto. Qed.

(** *** Output *)

(** Nothing but the log and the serial line changed. *)
Definition logged w w' : Prop := ∃ o l, w' = (with_output o w.1, (w.2.1, l)) ∧ output_ok o.
Lemma logged_trans w1 w2 w3 : logged w1 w2 → logged w2 w3 → logged w1 w3.
Proof. intros (o & l & -> & Ho) (o' & l' & -> & Ho'). exists o', l'. split; [done|done]. Qed.
Lemma logged_ok n w w' : ok n w → logged w w' → ok n w'.
Proof. intros [] (o & l & -> & Ho). split; try done. simpl. by rewrite output_of_with. Qed.
Lemma out_logged b w : output_ok (output_of w.1) → ∃ w', out b w = Return w' ∧ logged w w'.
Proof.
  destruct w as [s [c l]]. intros Ho. unfold out.
  assert (∃ l', serial_write_str b l = Return l') as [l' ->].
  { unfold serial_write_str. clear Ho. revert l. induction b as [|x b IH]; intros l0; [by eexists|]. cbn [fold_outcome].
    assert (∃ l1, (l1 ← (if (x =? 10)%N then write_byte 13%N l0 else Return l0); write_byte x l1) = Return l1) as [l1 ->].
    2: { apply IH. }
    destruct (x =? 10)%N; cbn [mbind outcome_bind].
    - destruct (line_takes 13 l0) as [l1 ->]. cbn [mbind outcome_bind]. destruct (line_takes x l1) as [l2 ->]. by eexists.
    - destruct (line_takes x l0) as [l2 ->]. by eexists. }
  cbn [mbind outcome_bind]. eexists. split; [done|]. exists (output_of s), l'. split; [by destruct s|done].
Qed.
Lemma out_byte_logged b w : output_ok (output_of w.1) → ∃ w', out_byte b w = Return w' ∧ logged w w'.
Proof.
  destruct w as [s [c l]]. intros Ho. unfold out_byte. destruct (line_takes b l) as [l' ->]. cbn.
  eexists. split; [done|]. exists (output_of s), l'. split; [by destruct s|done].
Qed.
Lemma append_logged text w : output_ok (output_of w.1) → ∃ w', try_set (append_output_text text) w = Return w' ∧ logged w w'.
Proof.
  destruct w as [s [c l]]. intros Ho. unfold try_set. destruct (append_text_shows text s Ho) as (o & E & Ho' & _). simpl. rewrite E.
  cbn. eexists. split; [done|]. by exists o, l.
Qed.
Lemma logged_output w w' : logged w w' → output_ok (output_of w'.1).
Proof. intros (o & l & -> & Ho). simpl. by rewrite output_of_with. Qed.
Lemma emit_logged text w : output_ok (output_of w.1) → ∃ w', emit_line text w = Return w' ∧ logged w w'.
Proof.
  intros Ho. unfold emit_line. destruct (out_logged (Utf8.as_bytes text ++ [10%N]) w Ho) as (w1 & -> & L1). cbn [mbind outcome_bind].
  destruct (append_logged text w1) as (w2 & -> & L2); [by eapply logged_output|]. exists w2. split; [done|]. by eapply logged_trans.
Qed.
Lemma emit_all_logged lines w : output_ok (output_of w.1) → ∃ w', emit_all lines w = Return w' ∧ logged w w'.
Proof.
  unfold emit_all. revert w. induction lines as [|x lines IH]; intros w Ho.
  { exists w. split; [done|]. destruct w as [s [c l]]. exists (output_of s), l. split; [by destruct s|done]. }
  cbn [fold_outcome]. destruct (emit_logged x w Ho) as (w1 & -> & L1). cbn [mbind outcome_bind].
  destruct (IH w1) as (w2 & -> & L2); [by eapply logged_output|]. exists w2. split; [done|]. by eapply logged_trans.
Qed.

(** A step that returns, and what holds then. *)
Definition returns_ok (n : nat) (m : outcome (st (F := F) (L := L))) : Prop := ∃ w', m = Return w' ∧ ok n w'.
Lemma emit_ok n text w : ok n w → returns_ok n (emit_line text w).
Proof. intros Hw. destruct (emit_logged text w) as (w' & -> & Hl); [apply Hw|]. exists w'. split; [done|]. by eapply logged_ok. Qed.
Lemma emit_all_ok n lines w : ok n w → returns_ok n (emit_all lines w).
Proof. intros Hw. destruct (emit_all_logged lines w) as (w' & -> & Hl); [apply Hw|]. exists w'. split; [done|]. by eapply logged_ok. Qed.
Lemma out_ok n b w : ok n w → returns_ok n (out b w).
Proof. intros Hw. destruct (out_logged b w) as (w' & -> & Hl); [apply Hw|]. exists w'. split; [done|]. by eapply logged_ok. Qed.
Lemma returns_bind n m k : returns_ok n m → (∀ w, ok n w → returns_ok n (k w)) → returns_ok n (m ≫= k).
Proof. intros (w & -> & Hw) Hk. by apply Hk. Qed.

(** *** Text and files *)

Lemma bytes_as_bytes t : bytes_ok t → Utf8.as_bytes t = t.
Proof.
  induction 1 as [|c t Hc _ IH]; [done|]. change (Utf8.as_bytes (c :: t)) with (Utf8.encode c ++ Utf8.as_bytes t).
  rewrite IH. unfold Utf8.encode. by rewrite (proj2 (N.ltb_lt _ _)) by (change (c < 128)%N; done).
Qed.
Lemma bytes_from_utf8 b : bytes_ok b → Utf8.from_utf8 b = Some b.
Proof.
  induction 1 as [|c b Hc _ IH]; [done|]. cbn [Utf8.from_utf8]. rewrite (proj2 (N.ltb_lt c 0x80)) by done. by rewrite IH.
Qed.
Lemma trim_bytes t : bytes_ok t → bytes_ok (Str.trim t) ∧ length (Str.trim t) ≤ length t.
Proof.
  assert (∀ t, bytes_ok t → bytes_ok (Str.trim_start t) ∧ length (Str.trim_start t) ≤ length t) as Hstart.
  { clear. induction 1 as [|c t Hc Ht [IH1 IH2]]; [split; [constructor|done]|]. simpl. destruct (Str.is_whitespace c); [split; [done|lia]|].
    split; [by constructor|done]. }
  intros Ht. unfold Str.trim. destruct (Hstart t Ht) as [H1 H2].
  destruct (Hstart (reverse (Str.trim_start t))) as [H3 H4]; [by apply Forall_reverse|].
  split; [by apply Forall_reverse|]. rewrite length_reverse in *. lia.
Qed.
Lemma words_bytes t : bytes_ok t → Forall (λ word, bytes_ok word ∧ word ≠ []) (split_whitespace t).
Proof.
  intros Ht. unfold split_whitespace. assert (∀ acc, bytes_ok acc → Forall (λ word, bytes_ok word ∧ word ≠ []) (words_from acc t)) as Hgen; [|apply Hgen; constructor].
  induction Ht as [|c t Hc Ht IH]; intros acc Hacc; cbn [words_from].
  - destruct acc as [|x acc]; [constructor|]. apply Forall_singleton. split; [by apply Forall_reverse|]. intros E%(f_equal length). by rewrite length_reverse in E.
  - destruct (Str.is_whitespace c); [|apply IH; by constructor]. destruct acc as [|x acc]; [apply IH; constructor|].
    constructor; [|apply IH; constructor]. split; [by apply Forall_reverse|]. intros E%(f_equal length). by rewrite length_reverse in E.
Qed.
Lemma join_bytes ws : Forall (λ word, bytes_ok word ∧ word ≠ []) ws → bytes_ok (join_with [32%N] ws) ∧ (ws ≠ [] → join_with [32%N] ws ≠ []).
Proof.
  induction 1 as [|x ws [Hw Hne] _ [IH _]]; [split; [constructor|done]|]. destruct ws as [|x' ws]; [by split|].
  change (join_with [32%N] (x :: x' :: ws)) with (x ++ [32%N] ++ join_with [32%N] (x' :: ws)). split.
  - apply Forall_app. split; [done|]. constructor; [lia|done].
  - intros _ E. by apply app_eq_nil in E as [? _].
Qed.
Lemma write_files n fs name content :
  files_ok (S n) fs → bytes_ok content → content ≠ [] → ∃ r fs', write_file_by_name name content fs = Return (r, fs') ∧ files_ok n fs'.
Proof.
  intros (m & Hs & Hm) Hc Hne. destruct (write_ok _ _ _ name content Hs Hne) as (r & fs' & -> & Hcase). eexists _, _. split; [done|].
  destruct Hcase as [[_ ?]|[_ [?|?]]]; eexists; (split; [done|]).
  - by apply map_Forall_insert_2.
  - done.
  - intros k c Hk. apply lookup_delete_Some in Hk as [_ Hk]. by apply (Hm k).
Qed.
Lemma read_files n fs name :
  files_ok n fs → ∃ r fs', read_file_by_name name fs = Return (r, fs') ∧ files_ok n fs' ∧ ∀ c, r = Ok c → bytes_ok c.
Proof.
  intros (m & Hs & Hm). destruct (read_ok _ _ _ name Hs) as (r & fs' & -> & Hs' & Hr). eexists _, _. split; [done|]. split; [by exists m|].
  intros c ->. destruct (m !! name_of name) eqn:E; [|done]. injection Hr as <-. by apply (Hm _ _ E).
Qed.
Lemma list_all_files n fs : files_ok n fs → ∃ r fs', list_files fs = Return (r, fs') ∧ files_ok n fs'.
Proof. intros (m & Hs & Hm). destruct (list_ok _ _ _ Hs) as (names & fs' & -> & Hs' & _). eexists _, _. split; [done|]. by exists m. Qed.

(** *** Commands *)

Lemma ok_files_set n w fs : ok n w → files_ok n fs → ok n (set (λ s, s <| filesystem := Some fs |>) w).
Proof. intros [] Hf. split; try done. by intros fs' [= <-]. Qed.
Ltac kept := intros []; split; done.
Lemma prompt_ok n w : ok n w → returns_ok n (show_prompt w).
Proof. apply out_ok. Qed.
Lemma cli_active_ok n b w : ok n w → returns_ok n (set_cli_active b w).
Proof.
  intros Hw. unfold set_cli_active. assert (ok n (set (λ s, s <| cli_active := b |>) w)) as H1 by (revert Hw; kept).
  set (w1 := set _ w) in *. clearbody w1. destruct b; cbv zeta.
  - apply returns_bind.
    { apply emit_ok. destruct H1. split; try done. unfold set. simpl. split; [done|]. split; [lia|]. split; [done|]. by apply Forall_replicate. }
    intros w2 H2. destruct (cli_hint_shown w2.1); [by exists w2|]. apply returns_bind; [by apply emit_ok|].
    intros w3 H3. eexists. split; [done|]. revert H3. kept.
  - apply emit_ok. case_bool_decide; [|done]. revert H1. kept.
Qed.
Lemma recover_ok n w : ok n w → ok n (set recover_filesystem w).
Proof.
  intros Hw. destruct w as [s cl]. unfold set, recover_filesystem. simpl. destruct (editor s) as [e|] eqn:Ee; [|done].
  pose proof (ok_editor _ _ Hw e Ee) as He. destruct (MinimalEditor.editor_io e) as [io|] eqn:Eio; destruct Hw; split; try done.
  simpl. intros fs [= <-]. by apply He.
Qed.
Lemma new_editor_ok n : editor_ok n (MinimalEditor.new 23).
Proof. split; [|done|done]. split; [|constructor|constructor]. split; [by repeat constructor|]. exists []. by split. Qed.
Lemma open_document_ok n path fs :
  files_ok n fs → ∃ e messages, open_document path fs = Return (e, messages) ∧ editor_ok n e.
Proof.
  intros Hf. unfold open_document. destruct path as [path|].
  2: { eexists _, _. split; [done|]. destruct (new_editor_ok n) as [E1 E2 _]. split; try done. by intros io [= <-]. }
  unfold BareMetalEditorIo.open, BareMetalEditorIo.convert. simpl (BareMetalEditorIo.fs _).
  destruct (read_files n fs path Hf) as (r & fs1 & -> & Hf1 & Hr). cbn [mbind outcome_bind].
  assert (∀ fs2 h, files_ok n fs2 → editor_ok n (MinimalEditor.set_editor_io (BareMetalEditorIo.new fs2) h (MinimalEditor.new 23))) as Hset.
  { intros fs2 h Hf2. destruct (new_editor_ok n) as [E1 E2 _]. split; try done. by intros io [= <-]. }
  destruct r as [content|e]; cbn [map_err try_bind mbind outcome_bind]; [|eexists _, _; split; [done|by apply Hset]].
  specialize (Hr content eq_refl). rewrite (bytes_from_utf8 _ Hr). simpl (BareMetalEditorIo.fs _).
  destruct Hf1 as (m & Hs & Hm). destruct (entry_ok _ _ _ path Hs) as (id & fs2 & -> & Hs2 & _).
  assert (files_ok n fs2) as Hf2 by by exists m. cbn [map_err try_bind mbind outcome_bind].
  destruct id as [id|]; cbn [mbind outcome_bind]; eexists _, _; (split; [done|]); [|by apply Hset].
  destruct (Hset fs2 (DocumentHandle.new (Some id) (Some path)) Hf2) as [E1 E2 E3]. split; try done.
  simpl. pose proof (EditorSafety.load_ok content EditorCore.new Hr) as Hl. by apply (EditorSafety.ok_other _ _ Hl).
Qed.
Lemma files_recovered_ok n w :
  ok n w → ok n (match filesystem w.1 with None => set recover_filesystem w | Some _ => w end).
Proof. intros Hw. destruct (filesystem w.1); [done|by apply recover_ok]. Qed.
Lemma open_editor_ok n path w : ok n w → returns_ok n (open_editor path w).
Proof.
  intros Hw%files_recovered_ok. unfold open_editor. revert Hw.
  generalize (match filesystem w.1 with None => set recover_filesystem w | Some _ => w end). clear w. intros w Hw. cbv zeta.
  assert (∃ e messages, match filesystem w.1 with
    | Some fs => open_document path fs | None => Return (MinimalEditor.new 23, [str "Warning: No filesystem - :w will not work"]) end
    = Return (e, messages) ∧ editor_ok n e) as (e & messages & -> & He).
  { destruct (filesystem w.1) as [fs|] eqn:Ef; [apply open_document_ok; by apply (ok_files _ _ Hw)|].
    eexists _, _. split; [done|]. apply new_editor_ok. }
  cbn [mbind outcome_bind]. apply returns_bind; [apply emit_all_ok; destruct Hw; by split|].
  intros w2 H2. apply emit_ok. destruct H2. split; try done. by intros e' [= <-].
Qed.
Lemma send_ok channel m c : context_ok c → ∃ r c', KernelContext.send channel m c = Return (r, c') ∧ context_ok c'.
Proof.
  intros [Hl Hwf]. unfold KernelContext.send, KernelContext.on_channel.
  destruct (N.leb_spec MAX_CHANNELS channel) as [|Hch]; [by eexists _, _|]. unfold MAX_CHANNELS in Hch.
  destruct (lookup_lt_is_Some_2 (KernelContext.channels c) (N.to_nat channel)) as [x Hx]; [lia|].
  rewrite (proj2 (slice_get_Return _ _ _) Hx). cbn [mbind outcome_bind].
  destruct (ChannelSpec.send_spec m x (Forall_lookup_1 _ _ _ _ Hwf Hx)) as (y & Hy & Hs).
  assert (∃ r, Channel.send m x = Return (r, y)) as [r ->] by (case_bool_decide; destruct Hs as [-> _]; by eexists).
  cbn [mbind outcome_bind].
  rewrite (proj2 (slice_set_Return (KernelContext.channels c) channel y (<[N.to_nat channel := y]> (KernelContext.channels c))))
    by (split; [lia|done]).
  cbn. eexists _, _. split; [done|]. split; [by simpl; rewrite length_insert|]. by apply Forall_insert.
Qed.
Lemma delegate_ok n command w : ok n w → returns_ok n (delegate_to_command_service command w).
Proof.
  intros Hw. destruct w as [s [c l]]. unfold delegate_to_command_service, KernelContext.take_message_id.
  pose proof (ok_context _ _ Hw) as Hc. simpl in Hc. set (c1 := update_field _ _ c).
  assert (context_ok c1) as Hc1 by done. clearbody c1. destruct (CommandRequestB.from_bytes _ _ _) as [request|].
  - destruct (send_ok (command_channel s) (KernelMessage.CommandRequest request) c1 Hc1) as (r & c2 & -> & Hc2).
    cbn [mbind outcome_bind]. apply emit_ok. destruct Hw. by split.
  - eexists. split; [done|]. destruct Hw. by split.
Qed.
Lemma run_ls_ok n w : ok n w → returns_ok n (run_ls w).
Proof.
  intros Hw. unfold run_ls, on_files. destruct (filesystem w.1) as [fs|] eqn:Ef; [|by apply emit_ok].
  destruct (list_all_files n fs (ok_files _ _ Hw _ Ef)) as (r & fs' & -> & Hf). cbn [mbind outcome_bind].
  pose proof (ok_files_set n w fs' Hw Hf). destruct r as [[|x files]|e]; [by apply emit_ok|by apply emit_all_ok|by apply emit_ok].
Qed.
Lemma run_cat_ok n args w : ok n w → returns_ok n (run_cat args w).
Proof.
  intros Hw. unfold run_cat, on_files. destruct args as [|path args]; [by apply emit_ok|].
  destruct (filesystem w.1) as [fs|] eqn:Ef; [|by apply emit_ok].
  destruct (read_files n fs path (ok_files _ _ Hw _ Ef)) as (r & fs' & -> & Hf & _). cbn [mbind outcome_bind].
  pose proof (ok_files_set n w fs' Hw Hf). destruct r as [content|e]; [|by apply emit_ok].
  destruct (Utf8.from_utf8 content); [by apply emit_all_ok|by apply emit_ok].
Qed.
(** An argument list that stores some text. *)
Lemma run_write_ok n args w :
  ok (S n) w → Forall (λ word, bytes_ok word ∧ word ≠ []) args → (length args = 1 → filesystem w.1 = None) →
  returns_ok n (run_write args w).
Proof.
  intros Hw Ha Hone. pose proof (ok_weaken _ _ Hw) as Hw'. unfold run_write, on_files. destruct args as [|path words]; [by apply emit_ok|].
  destruct (filesystem w.1) as [fs|] eqn:Ef; [|by apply emit_ok].
  apply Forall_cons in Ha as [_ Ha]. destruct (join_bytes words Ha) as [Hj Hne]. rewrite (bytes_as_bytes _ Hj).
  destruct (write_files n fs path (join_with [32%N] words) (ok_files _ _ Hw _ Ef) Hj) as (r & fs' & -> & Hf).
  { apply Hne. intros ->. by specialize (Hone eq_refl). }
  cbn [mbind outcome_bind]. pose proof (ok_files_set n w fs' Hw' Hf). destruct r; by apply emit_ok.
Qed.

(** A line that the session survives: not [halt], and no [write] of nothing. *)
Definition line_safe (line : Str.t) s : Prop :=
  match split_whitespace line with
  | [] => True
  | cmd :: args => cmd ≠ str "halt" ∧ (cmd = str "write" → length args = 1 → filesystem s = None)
  end.
Lemma open_cli_ok n w : ok n w → returns_ok n (open_cli w).
Proof. intros Hw. apply cli_active_ok. revert Hw. kept. Qed.
Lemma run_word_ok n cmd args w :
  ok (S n) w → Forall (λ word, bytes_ok word ∧ word ≠ []) args → cmd ≠ str "halt" →
  (cmd = str "write" → length args = 1 → filesystem w.1 = None) → returns_ok n (run_word cmd args w).
Proof.
  intros Hw Ha Hh Hwr. pose proof (ok_weaken _ _ Hw) as Hw'. unfold run_word, is_word.
  case_bool_decide; [by apply emit_all_ok|]. case_bool_decide.
  { destruct args as [|what args]; [by apply emit_ok|]. case_bool_decide; [by apply open_editor_ok|].
    case_bool_decide; [by apply open_cli_ok|by apply emit_ok]. }
  case_bool_decide; [apply returns_bind; [by apply emit_ok|]; intros; by apply emit_ok|].
  case_bool_decide; [cbv zeta; apply emit_ok; revert Hw'; kept|].
  case_bool_decide.
  { destruct (cli_active w.1); [by exists w|]. destruct (active_component w.1); apply emit_ok; [revert Hw'; kept|done]. }
  case_bool_decide; [by apply open_editor_ok|]. rewrite bool_decide_false by done.
  do 3 (case_bool_decide; [by apply delegate_ok|]). case_bool_decide; [by apply run_ls_ok|].
  case_bool_decide; [by apply run_cat_ok|]. case_bool_decide; [apply run_write_ok; auto|by apply emit_ok].
Qed.
Lemma run_command_line_ok n line w :
  ok (S n) w → bytes_ok line → line_safe line w.1 → returns_ok n (run_command_line line w).
Proof.
  intros Hw Hl Hs. pose proof (words_bytes line Hl) as Hwords. unfold run_command_line, line_safe in *.
  destruct (split_whitespace line) as [|cmd args]; [exists w; split; [done|by apply ok_weaken]|].
  destruct Hs as [Hh Hwr]. apply Forall_cons in Hwords as [_ Ha].
  destruct (_ || _).
  { eexists. split; [done|]. apply ok_weaken in Hw as []. split; try done. destruct ok_output0 as [O1 O2 O3 O4]. split; simpl in *; done || (unfold OUTPUT_MAX_LINES; lia). }
  unfold emit_command_line.
  destruct (emit_logged (assembled [Utf8.bytes (prompt_prefix w.1); Utf8.as_bytes line] "WS > ") w (ok_output _ _ Hw)) as (w1 & -> & L1).
  cbn [mbind outcome_bind]. pose proof (logged_ok _ _ _ Hw L1) as H1.
  destruct (_ && _); [apply cli_active_ok; by apply ok_weaken|]. apply run_word_ok; try done.
  destruct L1 as (o & l & -> & _). done.
Qed.

(** *** The command line and the palette *)

Lemma buffer_text_ok buffer n :
  length buffer = CMD → n ≤ CMD → bytes_ok buffer →
  buffer_text buffer n = Return (Str.trim (take n buffer)) ∧
  bytes_ok (Str.trim (take n buffer)) ∧ length (Str.trim (take n buffer)) ≤ CMD.
Proof.
  intros Hl Hn Hb. unfold buffer_text, upto. rewrite (proj2 (Nat.leb_le _ _)) by lia. cbn [mbind outcome_bind].
  assert (bytes_ok (take n buffer)) as Ht by by apply Forall_take. rewrite (bytes_from_utf8 _ Ht). simpl.
  destruct (trim_bytes _ Ht) as [H1 H2]. split; [done|]. split; [done|]. rewrite length_take in H2. lia.
Qed.
(** The line that is typed. *)
Definition command_line s : Str.t := Str.trim (take (command_len s) (command_buffer s)).
Definition cli_line s : Str.t := Str.trim (take (cli_len s) (cli_buffer s)).
Lemma bare_execute_ok n w : ok (S n) w → line_safe (command_line w.1) w.1 → returns_ok n (execute_command w).
Proof.
  intros Hw Hs. unfold execute_command, command_line in *. pose proof (ok_command _ _ Hw) as (C1 & C2 & C3).
  destruct (buffer_text_ok _ _ C1 C2 C3) as (-> & Hb & Hl). cbn [mbind outcome_bind].
  set (line := Str.trim _) in *. clearbody line.
  destruct line as [|x rest]; [by apply prompt_ok, ok_weaken|]. set (line := x :: rest) in *. clearbody line.
  rewrite (bytes_as_bytes _ Hb), take_ge, (bytes_from_utf8 _ Hb) by done. simpl.
  apply returns_bind; [by apply run_command_line_ok|]. intros w' Hw'. by apply prompt_ok.
Qed.
Lemma copy_prefix_ok b buffer :
  length buffer = CMD → bytes_ok buffer → bytes_ok b →
  let n := Nat.min (length b) CMD in
  length (copy_prefix (N.of_nat n) b buffer) = CMD ∧ n ≤ CMD ∧ bytes_ok (copy_prefix (N.of_nat n) b buffer) ∧
  take n (copy_prefix (N.of_nat n) b buffer) = take n b.
Proof.
  intros Hl Hbuf Hb n. unfold copy_prefix. rewrite Nat2N.id, length_app, length_take, length_drop. split; [unfold n; lia|].
  split; [unfold n; lia|]. split.
  - apply Forall_app. split; [by apply Forall_take|by apply Forall_drop].
  - rewrite take_app_le by (rewrite length_take; unfold n; lia). by rewrite take_take, Nat.min_id.
Qed.
Lemma set_text_ok n text w : ok n w → bytes_ok text → ok n (set (set_command_text text) w).
Proof.
  intros Hw Ht. pose proof (ok_command _ _ Hw) as (C1 & C2 & C3). destruct Hw. split; try done. unfold set, set_command_text. simpl.
  rewrite (bytes_as_bytes _ Ht). destruct (copy_prefix_ok text _ C1 C3 Ht) as (H1 & H2 & H3 & _). done.
Qed.
Lemma set_text_line n text w :
  ok n w → bytes_ok text → length text ≤ CMD → command_line (set (set_command_text text) w).1 = Str.trim text.
Proof.
  intros Hw Ht Hl. pose proof (ok_command _ _ Hw) as (C1 & C2 & C3). unfold command_line, set, set_command_text. simpl.
  rewrite (bytes_as_bytes _ Ht). destruct (copy_prefix_ok text _ C1 C3 Ht) as (_ & _ & _ & E). simpl in E. rewrite E.
  by rewrite Nat.min_l, take_ge.
Qed.
(** Words that run in the palette as if they were typed. *)
Lemma bare_typed_ok n text w :
  ok (S n) w → bytes_ok text → length text ≤ CMD → line_safe (Str.trim text) w.1 →
  returns_ok n (execute_command (set (set_command_text text) w)).
Proof.
  intros Hw Ht Hl Hs. apply bare_execute_ok; [by apply set_text_ok|]. rewrite (set_text_line (S n)) by done.
  revert Hs. unfold line_safe. by destruct (split_whitespace _).
Qed.
Lemma close_ok n w : ok n w → ok n (set (λ s, s <| palette_overlay ::= PaletteOverlayState.close |>) w).
Proof. kept. Qed.
Lemma patterns_are_bytes id pattern :
  CommandPalette.get_command id registered_commands ≫= CommandDescriptor.prompt_pattern = Some pattern → bytes_ok pattern.
Proof.
  unfold CommandPalette.get_command, CommandPalette.lookup. destruct (list_find _ _) as [[i c]|] eqn:E; [|done].
  apply list_find_Some in E as (E & _ & _). simpl. intros Hp.
  assert (Forall (λ c, match CommandDescriptor.prompt_pattern (RegisteredCommand.descriptor c) with
    | Some p => bool_decide (bytes_ok p) = true | None => True end) (CommandPalette.commands registered_commands)) as Hall
    by (vm_compute; repeat constructor).
  pose proof (Forall_lookup_1 _ _ _ _ Hall E) as Hc. simpl in Hc. rewrite Hp in Hc. by apply bool_decide_eq_true in Hc.
Qed.
Lemma run_palette_ok n id w :
  ok (S n) w → CommandId.as_str id ≠ str "halt" → returns_ok n (run_palette_command id w).
Proof.
  intros Hw Hh. unfold run_palette_command. destruct (out_ok (S n) (Utf8.as_bytes (str "  palette_action=execute cmd=" ++ CommandId.as_str id) ++ [10%N]) w Hw)
    as (w1 & -> & H1). cbn [mbind outcome_bind]. pose proof (ok_weaken _ _ H1) as H1'. clear Hw w.
  assert (∀ m, returns_ok n m →
    returns_ok n (w ← m; Return (set (λ s, s <| palette_overlay ::= PaletteOverlayState.close |>) w))) as Hclose.
  { intros m Hm. apply returns_bind; [done|]. intros w Hw. eexists. split; [done|]. by apply close_ok. }
  unfold is_word at 1 2 3. case_bool_decide; [by apply Hclose, open_editor_ok|]. case_bool_decide; [by apply Hclose, open_cli_ok|].
  case_bool_decide; [apply Hclose, emit_ok; revert H1'; kept|].
  destruct (_ ≫= CommandDescriptor.prompt_pattern) as [pattern|] eqn:Ep.
  { eexists. split; [done|]. apply close_ok, set_text_ok; [done|]. rewrite (ok_palette _ _ H1) in Ep. by eapply patterns_are_bytes. }
  destruct (match CommandPalette.execute_command _ _ _ with Ok _ => _ | Err _ => _ end) as [kind text].
  destruct (out_ok (S n) (Utf8.bytes kind ++ Utf8.as_bytes text ++ [10%N]) w1 H1) as (w2 & -> & K2). cbn [mbind outcome_bind].
  destruct (append_logged text w2 (ok_output _ _ K2)) as (w3 & -> & L3). cbn [mbind outcome_bind].
  pose proof (logged_ok _ _ _ K2 L3) as K3. apply Hclose.
  destruct (existsb _ _) eqn:Ex; [|exists w3; split; [done|by apply ok_weaken]].
  apply existsb_exists in Ex as (word & Hin & Eq). apply bool_decide_eq_true in Eq. rewrite Eq in *.
  apply bare_typed_ok; try done;
    (repeat (destruct Hin as [<-|Hin]; [try done; vm_compute; first [lia|repeat constructor|by split|done]|])); done.
Qed.

(** *** The editor *)

#[local] Instance key_eq_dec : EqDecision EditorKey.t.
Proof. solve_decision. Defined.
(** Keys of letters, digits and punctuation. *)
Definition types_text (k : EditorKey.t) : Prop :=
  k ∉ [EditorKey.Enter; EditorKey.Backspace; EditorKey.Escape].
Lemma typing_keys byte k : is_normal_typing byte = true → EditorKey.from_ascii byte = Some k → types_text k.
Proof.
  intros Ht Hk. assert (byte < 128)%N as Hlt.
  { unfold is_normal_typing in Ht. apply orb_prop in Ht as [Ht|Ht].
    { rewrite !orb_true_iff, !andb_true_iff, !N.leb_le in Ht. lia. }
    apply existsb_exists in Ht as (x & Hin & ->%N.eqb_eq).
    assert (Forall (λ x, (x <? 128)%N = true) (Utf8.bytes " .,;:'-_!?" ++ [34%N])) as Hall by (vm_compute; repeat constructor).
    rewrite Forall_forall in Hall. apply N.ltb_lt, Hall. by apply list_elem_of_In. }
  assert (Forall (λ b, negb (is_normal_typing (N.of_nat b)) ||
    match EditorKey.from_ascii (N.of_nat b) with
    | Some (EditorKey.Enter | EditorKey.Backspace | EditorKey.Escape) => false | _ => true end = true) (seq 0 128)) as Hall
    by (vm_compute; repeat constructor).
  rewrite Forall_forall in Hall. specialize (Hall (N.to_nat byte)). rewrite elem_of_seq, N2Nat.id, Ht, Hk in Hall.
  specialize (Hall ltac:(lia)). intros Hin. by repeat (apply elem_of_cons in Hin as [->|Hin]; [done|]); apply not_elem_of_nil in Hin.
Qed.
Lemma clamp_mode e : EditorCore.mode (EditorCore.clamp_cursor e) = EditorCore.mode e.
Proof. unfold EditorCore.clamp_cursor. by destruct (_ <? _). Qed.
Lemma save_mode e : EditorCore.mode (EditorCore.save_undo_snapshot e) = EditorCore.mode e.
Proof. unfold EditorCore.save_undo_snapshot. by destruct (_ <? _). Qed.
Lemma find_next_mode e ok e' : EditorCore.find_next e = Return (ok, e') → EditorCore.mode e' = EditorCore.mode e.
Proof.
  unfold EditorCore.find_next. destruct (match EditorCore.search_query e with [] => _ | q => _ end) as [query e1] eqn:E1.
  assert (EditorCore.mode e1 = EditorCore.mode e) as <- by (destruct (EditorCore.search_query e); injection E1 as <- <-; done). clear E1.
  destruct query as [[|q0 q]|]; [by intros [= <- <-]| |by intros [= <- <-]].
  intros (f & _ & E)%bind_Return. destruct f; [by injection E as <- <-|].
  destruct (EditorCore.search_rows _ _ _); [by injection E as <- <-|].
  destruct (match EditorCore.search_query e1 with [] => _ | _ => _ end); [by injection E as <- <-|].
  destruct (TextBuffer.line _ _); [|by injection E as <- <-].
  apply bind_Return in E as ([h t] & _ & E). destruct (Str.find _ h); by injection E as <- <-.
Qed.
(** In normal mode only four keys change the mode. *)
Lemma normal_keeps_mode k e o e' :
  k ∉ [EditorKey.I; EditorKey.A; EditorKey.Colon; EditorKey.Slash] →
  EditorCore.handle_normal_mode k e = Return (o, e') → EditorCore.mode e' = EditorCore.mode e.
Proof.
  intros Hk. destruct k; cbn [EditorCore.handle_normal_mode]; try (destruct Hk; set_solver); try (by intros [= <- <-]);
    try (intros [= <- <-];
      unfold EditorCore.move_cursor_left, EditorCore.move_cursor_right, EditorCore.move_cursor_up, EditorCore.move_cursor_down;
      destruct (_ <? _); rewrite ?clamp_mode; done).
  - cbn zeta. intros ([ok b] & _ & E)%bind_Return. destruct ok; injection E as <- <-; apply save_mode.
  - cbn zeta. destruct (TextBuffer.delete_line _ _) as [[] b]; intros [= <- <-]; [|apply save_mode].
    rewrite clamp_mode. destruct (_ <=? _); apply save_mode.
  - unfold EditorCore.undo. by destruct (EditorCore.pop _) as [[s r]|]; intros [= <- <-].
  - intros ([ok e1] & E & [= <- <-])%bind_Return. by eapply find_next_mode.
  - unfold EditorCore.redo. by destruct (EditorCore.pop _) as [[s r]|]; intros [= <- <-].
Qed.
Lemma typed_row ch e o e' :
  EditorCore.insert_char_in_insert_mode ch e = Return (o, e') → Position.row (EditorCore.cursor e') = Position.row (EditorCore.cursor e).
Proof.
  destruct (EditorSafety.save_keeps e) as (Sb & Sc & _). unfold EditorCore.insert_char_in_insert_mode. cbn zeta. rewrite Sb, Sc.
  intros ([ok b] & _ & E)%bind_Return. destruct ok; injection E as <- <-; simpl; by rewrite Sc.
Qed.
(** Where typing can lead to the mode of insertion or of commands, the cursor stays on its row. *)
Lemma typing_keeps_row k e o e' :
  types_text k → EditorCore.apply_key k e = Return (o, e') →
  EditorCore.mode e' = EditorMode.Insert ∨ EditorCore.mode e' = EditorMode.Command →
  Position.row (EditorCore.cursor e') = Position.row (EditorCore.cursor e).
Proof.
  unfold types_text. intros Hk. unfold EditorCore.apply_key. destruct (EditorCore.mode e) eqn:Em.
  - destruct (decide (k ∈ [EditorKey.I; EditorKey.A; EditorKey.Colon; EditorKey.Slash])) as [Hin|Hn].
    + rewrite !elem_of_cons, elem_of_nil in Hin. destruct Hin as [->|[->|[->|[->|[]]]]]; cbn; [| |by intros [= <- <-]..].
      * by intros [= <- <-].
      * destruct (_ <? _); by intros [= <- <-].
    + intros E%normal_keeps_mode Hm; [|done]. rewrite E, Em in Hm. by destruct Hm.
  - destruct k; cbn [EditorCore.handle_insert_mode EditorCore.typed]; try (destruct Hk; set_solver);
      try (intros E _; by eapply typed_row); by intros [= <- <-].
  - intros [= E] _. destruct k; cbn in E; try (destruct Hk; set_solver); by injection E as <- <-.
  - destruct k; cbn [EditorCore.handle_search_mode]; try (destruct Hk; set_solver); by intros [= <- <-].
Qed.
(** Only Enter in command mode asks for files, and it leaves the text. *)
Lemma request_comes_from_command k e r e' :
  EditorCore.apply_key k e = Return (CoreOutcome.RequestIo r, e') →
  k = EditorKey.Enter ∧ EditorCore.mode e = EditorMode.Command ∧ EditorCore.execute_command e = CoreOutcome.RequestIo r ∧
  EditorCore.buffer e' = EditorCore.buffer e.
Proof.
  unfold EditorCore.apply_key. destruct (EditorCore.mode e) eqn:Em.
  - destruct k; cbn [EditorCore.handle_normal_mode]; try done.
    + by intros ([[] b] & _ & [=])%bind_Return.
    + cbn zeta. by destruct (TextBuffer.delete_line _ _) as [[] b].
    + by destruct (EditorCore.undo e) as [[] ?].
    + by intros ([[] b] & _ & [=])%bind_Return.
    + by destruct (EditorCore.redo e) as [[] ?].
  - destruct k; cbn [EditorCore.handle_insert_mode EditorCore.typed]; unfold EditorCore.insert_char_in_insert_mode;
      try done; try (by intros ([[] b] & _ & [=])%bind_Return).
  - intros [= E]. destruct k; cbn in E; try done. injection E as E <-. split_and!; try done. by rewrite E.
  - destruct k; cbn [EditorCore.handle_search_mode]; try done. by intros ([[] b] & _ & [=])%bind_Return.
Qed.

Lemma text_bytes ls : Forall StrSpec.ascii ls → bytes_ok (Str.join ls).
Proof.
  induction 1 as [|l ls Hl _ IH]; [constructor|]. destruct ls as [|l' ls]; [done|].
  change (Str.join (l :: l' :: ls)) with (l ++ 10%N :: Str.join (l' :: ls)). apply Forall_app. split; [done|]. constructor; [lia|done].
Qed.
(** The save that a key asks for has some text to store. *)
Definition save_safe (byte : N) (e : MinimalEditor.t F) : Prop :=
  EditorKey.from_ascii byte = Some EditorKey.Enter → MinimalEditor.mode e = EditorMode.Command →
  ∀ r, EditorCore.execute_command (MinimalEditor.core e) = CoreOutcome.RequestIo r →
  is_Some (MinimalEditor.editor_io e) → TextBuffer.as_string (EditorCore.buffer (MinimalEditor.core e)) ≠ [].
(** A step of the editor: it returns, and keeps the core as [c]. *)
Lemma serve_ok n r io e :
  EditorSafety.state_ok (MinimalEditor.core e) → MinimalEditor.viewport_rows e ≠ 0 →
  files_ok (S n) (BareMetalEditorIo.fs io) → TextBuffer.as_string (EditorCore.buffer (MinimalEditor.core e)) ≠ [] →
  (∀ io, MinimalEditor.editor_io e = Some io → files_ok (S n) (BareMetalEditorIo.fs io)) →
  ∃ q e', MinimalEditor.serve_io r io e = Return (q, e') ∧ editor_ok n e' ∧
    MinimalEditor.cursor e' = MinimalEditor.cursor e ∧ MinimalEditor.mode e' = MinimalEditor.mode e.
Proof.
  intros Hc Hv Hf Hne Hio. unfold MinimalEditor.serve_io. set (text := TextBuffer.as_string _) in *.
  assert (bytes_ok text) as Ht by (apply text_bytes; apply (EditorSafety.ok_text _ Hc)). cbv zeta. clearbody text.
  assert (∀ e1, MinimalEditor.core e1 = MinimalEditor.core e ∨ MinimalEditor.core e1 = EditorCore.mark_saved (MinimalEditor.core e) →
    MinimalEditor.viewport_rows e1 = MinimalEditor.viewport_rows e →
    (∀ io, MinimalEditor.editor_io e1 = Some io → files_ok n (BareMetalEditorIo.fs io)) →
    editor_ok n e1 ∧ MinimalEditor.cursor e1 = MinimalEditor.cursor e ∧ MinimalEditor.mode e1 = MinimalEditor.mode e) as Hkept.
  { intros e1 E1 E2 E3. unfold MinimalEditor.cursor, MinimalEditor.mode. split_and!; [|by destruct E1 as [->| ->]..].
    split; [|by rewrite E2|done]. by destruct E1 as [->| ->]; [|apply (EditorSafety.ok_other _ _ Hc)]. }
  assert (∀ path, ∃ x fs', write_file_by_name path (Utf8.as_bytes text) (BareMetalEditorIo.fs io) = Return (x, fs') ∧ files_ok n fs') as Hw
    by (intros; rewrite (bytes_as_bytes _ Ht); by apply write_files).
  assert (∀ handle, ∃ x io', BareMetalEditorIo.save handle text io = Return (x, io') ∧ files_ok n (BareMetalEditorIo.fs io')) as Hsave.
  { intros handle. unfold BareMetalEditorIo.save, BareMetalEditorIo.convert. destruct (DocumentHandle.path handle) as [path|].
    - destruct (Hw path) as ([x|x] & fs' & -> & Hf'); by eexists _, _.
    - eexists _, _. split; [done|]. by apply files_weaken. }
  destruct r as [|path|].
  - destruct (MinimalEditor.document e) as [h|].
    + destruct (Hsave h) as (x & io' & -> & Hf'). cbn [mbind outcome_bind]. eexists _, _. split; [done|].
      destruct x; apply Hkept; auto; by intros ? [= <-].
    + eexists _, _. split; [done|]. apply Hkept; auto. intros io' E. apply files_weaken. by apply Hio.
  - unfold BareMetalEditorIo.save_as, BareMetalEditorIo.convert.
    destruct (Hw path) as ([x|x] & fs' & -> & Hf'); cbn; eexists _, _; (split; [done|]); apply Hkept; auto; by intros ? [= <-].
  - destruct (MinimalEditor.document e) as [h|].
    + destruct (Hsave h) as (x & io' & -> & Hf'). cbn [mbind outcome_bind]. eexists _, _. split; [done|].
      apply Hkept; auto. by intros ? [= <-].
    + eexists _, _. split; [done|]. apply Hkept; auto. intros io' E. apply files_weaken. by apply Hio.
Qed.
Lemma adjust_ok n e : editor_ok n e →
  ∃ e', MinimalEditor.adjust_viewport e = Return e' ∧ editor_ok n e' ∧ MinimalEditor.core e' = MinimalEditor.core e.
Proof.
  intros He. unfold MinimalEditor.adjust_viewport. destruct (_ <? _).
  - eexists. split; [done|]. by destruct He.
  - destruct (_ <=? _); [|by exists e]. destruct (Nat.eqb_spec (MinimalEditor.viewport_rows e) 0) as [E|]; [by destruct (ek_rows _ _ He)|].
    eexists. split; [done|]. by destruct He.
Qed.
Lemma refresh_keeps n e : editor_ok n e →
  editor_ok n (MinimalEditor.refresh_prompt_status e) ∧
  MinimalEditor.core (MinimalEditor.refresh_prompt_status e) = MinimalEditor.core e.
Proof.
  intros He. unfold MinimalEditor.refresh_prompt_status. destruct (MinimalEditor.status e); [|done].
  destruct (MinimalEditor.mode e); try done; by destruct He.
Qed.
(** The second half of a step, for an editor whose core has taken the key. *)
Lemma outcome_ok n o e :
  EditorSafety.state_ok (MinimalEditor.core e) → MinimalEditor.viewport_rows e ≠ 0 →
  (∀ io, MinimalEditor.editor_io e = Some io → files_ok (S n) (BareMetalEditorIo.fs io)) →
  (∀ r, o = CoreOutcome.RequestIo r → is_Some (MinimalEditor.editor_io e) →
     TextBuffer.as_string (EditorCore.buffer (MinimalEditor.core e)) ≠ []) →
  ∃ q e', match o with
    | CoreOutcome.Continue => Return (false, e)
    | CoreOutcome.Changed => e ← MinimalEditor.adjust_viewport e; Return (false, e)
    | CoreOutcome.RequestExit _ => Return (true, e)
    | CoreOutcome.StatusMessage msg => Return (false, e <| MinimalEditor.status := msg |>)
    | CoreOutcome.RequestIo request =>
        match MinimalEditor.editor_io e with
        | Some io => MinimalEditor.serve_io request io e
        | None => Return (MinimalEditor.refuse_io request e)
        end
    end = Return (q, e') ∧ editor_ok n e' ∧
    MinimalEditor.cursor e' = MinimalEditor.cursor e ∧ MinimalEditor.mode e' = MinimalEditor.mode e.
Proof.
  intros Hc Hv Hio Hr.
  assert (editor_ok n e) as He by (split; [done|done|]; intros io E; by apply files_weaken, Hio).
  destruct o as [| |force|msg|r].
  - eexists _, _. split; [done|]. by split.
  - destruct (adjust_ok n e He) as (e' & -> & He' & E). cbn. eexists _, _. split; [done|].
    unfold MinimalEditor.cursor, MinimalEditor.mode. by rewrite E.
  - eexists _, _. split; [done|]. by split.
  - eexists _, _. split; [done|]. by destruct He.
  - specialize (Hr r eq_refl). destruct (MinimalEditor.editor_io e) as [io|] eqn:Eio.
    + apply serve_ok; try done; [by apply Hio|apply Hr; by eexists|by rewrite Eio].
    + unfold MinimalEditor.refuse_io. destruct r; eexists _, _; (split; [done|]); destruct He as [E1 E2 E3];
        (split; [split; [|done|done]|done]); simpl; try done; by apply (EditorSafety.ok_other _ _ E1).
Qed.
Lemma ascii_keys byte k : EditorKey.from_ascii byte = Some k → EditorSafety.key_ok k.
Proof.
  destruct k; try done. simpl. intros E. assert (byte = c ∧ (byte <? 0x7F)%N = true) as [<- ?%N.ltb_lt]; [|lia].
  unfold EditorKey.from_ascii in E. repeat case_match; try done; injection E as <-; split; try done;
    match goal with H : (_ && _) = true |- _ => by apply andb_prop in H as [_ ?] end.
Qed.
Lemma editor_byte_ok n byte e :
  editor_ok (S n) e → save_safe byte e →
  ∃ q e', MinimalEditor.process_byte byte e = Return (q, e') ∧ editor_ok n e' ∧
    assert_one_line byte (MinimalEditor.cursor e) (MinimalEditor.cursor e') (MinimalEditor.mode e') = Return tt.
Proof.
  intros He Hs. pose proof (editor_weaken _ _ He) as He'. unfold MinimalEditor.process_byte.
  destruct (EditorKey.from_ascii byte) as [k|] eqn:Ek.
  2: { eexists _, _. split; [done|]. split; [by destruct He'|]. unfold assert_one_line, MinimalEditor.cursor. simpl.
       rewrite !Nat.sub_diag. by rewrite andb_false_r. }
  destruct He as [E1 E2 E3]. destruct (EditorSafety.apply_key_ok k (MinimalEditor.core e) E1 (ascii_keys _ _ Ek)) as (o & c & E & Hc).
  cbv zeta. simpl (MinimalEditor.core (_ <| _ := _ |>)). rewrite E. cbn [mbind outcome_bind].
  destruct (outcome_ok n o (e <| MinimalEditor.status := [] |> <| MinimalEditor.core := c |>)) as (q & e1 & -> & He1 & Ec & Em); try done.
  { intros r ->. simpl. intros Hsome. destruct (request_comes_from_command _ _ _ _ E) as (-> & Em & Ex & Eb). rewrite Eb.
    by apply (Hs Ek Em r). }
  cbn [mbind outcome_bind]. simpl in Ec, Em.
  set (e2 := if q then e1 else MinimalEditor.refresh_prompt_status e1).
  assert (editor_ok n e2 ∧ MinimalEditor.core e2 = MinimalEditor.core e1) as [He2 E2'].
  { unfold e2. destruct q; [done|]. by apply refresh_keeps. }
  exists q, e2. split; [done|]. split; [done|]. unfold assert_one_line.
  destruct (is_normal_typing byte) eqn:Et; [|done].
  assert (MinimalEditor.cursor e2 = EditorCore.cursor c ∧ MinimalEditor.mode e2 = EditorCore.mode c) as [-> ->].
  { unfold MinimalEditor.cursor, MinimalEditor.mode in *. rewrite E2'. by rewrite Ec, Em. }
  destruct (EditorCore.mode c) eqn:Emc; try done;
    rewrite (typing_keeps_row k _ o c (typing_keys _ _ Et Ek) E) by auto;
    unfold MinimalEditor.cursor; rewrite !Nat.sub_diag; by rewrite andb_false_r.
Qed.

(** *** Input *)

Definition answers_ok (n : nat) (m : outcome (bool * st (F := F) (L := L))) : Prop := ∃ b w', m = Return (b, w') ∧ ok n w'.
Lemma answers_bind n m k : returns_ok n m → (∀ w, ok n w → answers_ok n (k w)) → answers_ok n (m ≫= k).
Proof. intros (w & -> & Hw) Hk. by apply Hk. Qed.
Lemma answer n b w : ok n w → answers_ok n (Return (b, w)).
Proof. intros Hw. by exists b, w. Qed.
(** The serial line takes what is logged, and nothing else changes. *)
Lemma out_frame b w : ∃ l, out b w = Return (w.1, (w.2.1, l)).
Proof.
  destruct w as [s [c l]]. unfold out. assert (∃ l', serial_write_str b l = Return l') as [l' ->]; [|by eexists].
  unfold serial_write_str. revert l. induction b as [|x b IH]; intros l0; [by eexists|]. cbn [fold_outcome].
  assert (∃ l1, (l1 ← (if (x =? 10)%N then write_byte 13%N l0 else Return l0); write_byte x l1) = Return l1) as [l1 ->]; [|apply IH].
  destruct (x =? 10)%N; cbn [mbind outcome_bind].
  - destruct (line_takes 13 l0) as [l1 ->]. cbn [mbind outcome_bind]. destruct (line_takes x l1) as [l2 ->]. by eexists.
  - destruct (line_takes x l0) as [l2 ->]. by eexists.
Qed.
Lemma bare_frame_ok n w l : ok n w → ok n (w.1, (w.2.1, l)).
Proof. kept. Qed.
Ltac step_out := match goal with |- context [out ?b ?w] => let l := fresh "l" in destruct (out_frame b w) as [l ->] end; cbn [mbind outcome_bind fst snd].
Lemma bare_refresh_ok p : ∃ p', PaletteOverlayState.refresh_results registered_commands p = Return p'.
Proof.
  unfold PaletteOverlayState.refresh_results. destruct (PaletteOverlayState.query p) as [|x q]; [by eexists|].
  unfold CommandPalette.filter_commands. set (matching := filter _ (CommandPalette.list_commands registered_commands)).
  destruct (PaletteSpec.score_all_spec (x :: q) matching) as (scored & -> & _); [|by eexists].
  apply Forall_forall. intros d [_ Hd]%list_elem_of_filter.
  assert (forallb (λ d, len (CommandDescriptor.tags d) <=? 1000000)%N (CommandPalette.list_commands registered_commands) = true) as Hall
    by (vm_compute; reflexivity).
  apply N.leb_le. rewrite forallb_forall in Hall. apply Hall. by apply list_elem_of_In.
Qed.
Lemma palette_key_ok event p :
  ∃ action p', PaletteOverlayState.handle_palette_key registered_commands event p = Return (action, p') ∧
    ∀ id, action = PaletteKeyAction.Execute id →
      KeyEvent.code event = KeyCode.Enter ∧ PaletteOverlayState.selected_command p = Some id.
Proof.
  assert (∀ ch, ∃ p', PaletteOverlayState.append_char registered_commands ch p = Return p') as Happ.
  { intros ch. unfold PaletteOverlayState.append_char. destruct (_ <? _); [apply bare_refresh_ok|by eexists]. }
  assert (∃ p', PaletteOverlayState.backspace registered_commands p = Return p') as Hback.
  { unfold PaletteOverlayState.backspace. destruct (PaletteOverlayState.query p); [by eexists|apply bare_refresh_ok]. }
  unfold PaletteOverlayState.handle_palette_key. destruct (KeyEvent.code event) eqn:Ec;
    try (destruct (PaletteOverlayState.keycode_to_char _) as [ch|];
         [destruct (Happ ch) as [p' ->]; cbn; by eexists _, _|by eexists _, _]);
    try (by eexists _, _).
  - eexists _, _. split; [done|]. intros id. destruct (PaletteOverlayState.selected_command p); [by intros [= ->]|done].
  - destruct Hback as [p' ->]. cbn. by eexists _, _.
Qed.
(** What is asked of a byte: it does not run [halt], and stores no empty text. *)
Definition harmless (byte : N) w : Prop :=
  let s := w.1 in
  if PaletteOverlayState.is_open (palette_overlay s) then
    byte_to_key_code byte = Some KeyCode.Enter →
    ∀ id, PaletteOverlayState.selected_command (palette_overlay s) = Some id → CommandId.as_str id ≠ str "halt"
  else
    match (if bool_decide (active_component s = Some ComponentType.Editor) then editor s else None) with
    | Some e => save_safe byte e
    | None => byte = 13%N ∨ byte = 10%N → line_safe (if cli_active s then cli_line s else command_line s) s
    end.
Lemma palette_input_ok n byte w :
  ok (S n) w → PaletteOverlayState.is_open (palette_overlay w.1) = true → harmless byte w → answers_ok n (palette_input byte w).
Proof.
  intros Hw Ho Hh. unfold palette_input, log, harmless in *. rewrite Ho in Hh. step_out. apply (bare_frame_ok _ _ l) in Hw.
  unfold byte_to_key_event. destruct (byte_to_key_code byte) as [code|] eqn:Ec; cbn [fmap option_fmap option_map].
  2: { apply answers_bind; [by apply out_ok, ok_weaken|]. intros; by apply answer. }
  pose proof (ok_palette _ _ Hw) as Ep. cbn [fst] in Ep. cbn [fst]. rewrite Ep. clear Ep.
  destruct (palette_key_ok (KeyEvent.new code Modifiers.NONE KeyState.Pressed) (palette_overlay w.1)) as (action & p' & -> & Hx).
  cbn [mbind outcome_bind]. assert (ok (S n) (set (λ s, s <| palette_overlay := p' |>) (w.1, (w.2.1, l)))) as H1 by (revert Hw; kept).
  set (w1 := set _ _) in *. clearbody w1. pose proof (ok_weaken _ _ H1) as H1'.
  destruct action as [| | |id].
  - apply answers_bind; [by apply out_ok|]. intros; by apply answer.
  - apply answers_bind; [by apply out_ok|]. intros; by apply answer.
  - apply answers_bind; [by apply out_ok|]. intros; by apply answer, close_ok.
  - destruct (Hx id eq_refl) as [E Hsel]. simpl in E. subst code. apply answers_bind; [|intros; by apply answer].
    apply run_palette_ok; [done|]. by apply Hh.
Qed.
Lemma editor_input_ok n byte e w :
  ok (S n) w → editor_ok (S n) e → save_safe byte e → answers_ok n (editor_input byte e w).
Proof.
  intros Hw He Hs. unfold editor_input, log. step_out. apply (bare_frame_ok _ _ l), ok_weaken in Hw.
  destruct (editor_byte_ok n byte e He Hs) as (q & e' & -> & He' & Ha). cbn [mbind outcome_bind].
  assert (ok n (set (λ s, s <| editor := Some e' |>) (w.1, (w.2.1, l)))) as H1.
  { destruct Hw. split; try done. by intros ? [= <-]. }
  set (w1 := set _ _) in *. clearbody w1. apply answers_bind; [by apply out_ok|]. intros w2 H2. rewrite Ha. cbn [mbind outcome_bind].
  destruct q; [|by apply answer].
  assert (ok n (set (λ s, s <| active_component := None |>) w2)) as Hq%recover_ok by (revert H2; kept).
  apply answers_bind; [by apply out_ok, Hq|].
  intros w3 H3. apply answers_bind; [by apply prompt_ok|]. intros; by apply answer.
Qed.
Lemma cli_keys {A} (enter escape back arrow other : A) byte :
  match byte with 13 | 10 => enter | 0x1B => escape | 0x08 | 0x7F => back | 0x80 | 0x81 => arrow | _ => other end%N =
  if existsb (N.eqb byte) [13; 10]%N then enter else if (byte =? 0x1B)%N then escape
  else if existsb (N.eqb byte) [0x08; 0x7F]%N then back else if existsb (N.eqb byte) [0x80; 0x81]%N then arrow else other.
Proof. destruct byte as [|p]; [done|]. do 8 (destruct p as [p|p|]; try done). Qed.
Lemma command_keys {A} (enter back other : A) byte :
  match byte with 13 | 10 => enter | 0x08 | 0x7F => back | _ => other end%N =
  if existsb (N.eqb byte) [13; 10]%N then enter else if existsb (N.eqb byte) [0x08; 0x7F]%N then back else other.
Proof. destruct byte as [|p]; [done|]. do 8 (destruct p as [p|p|]; try done). Qed.
Lemma is_enter byte : existsb (N.eqb byte) [13; 10]%N = true → byte = 13%N ∨ byte = 10%N.
Proof. simpl. rewrite orb_false_r. intros [?%N.eqb_eq|?%N.eqb_eq]%orb_prop; auto. Qed.
Lemma printable_ascii byte : printable byte = true → (byte < 128)%N.
Proof. unfold printable. intros [_ H%N.ltb_lt]%andb_prop. lia. Qed.
Lemma cli_reset_ok n w : ok n w → ok n (set reset_cli_buffer w).
Proof.
  intros []. split; try done. unfold set. simpl. split; [done|]. split; [lia|]. split; [done|]. by apply Forall_replicate.
Qed.
Lemma cli_backspace_ok n w : ok n w → returns_ok n (cli_backspace w).
Proof.
  intros Hw. pose proof (ok_cli _ _ Hw) as (C1 & C2 & C3 & C4). unfold cli_backspace. rewrite C3.
  destruct (_ && _); [|by exists w]. rewrite Nat.ltb_irrefl. cbn [mbind outcome_bind]. apply out_ok. destruct Hw. split; try done.
  unfold set. simpl. rewrite C3. split_and!; try done. lia.
Qed.
Lemma out_byte_ok n b w : ok n w → returns_ok n (out_byte b w).
Proof. intros Hw. destruct (out_byte_logged b w) as (w' & -> & Hl); [apply Hw|]. exists w'. split; [done|]. by eapply logged_ok. Qed.
Lemma cli_insert_ok n byte w : ok n w → (byte < 128)%N → returns_ok n (cli_insert byte w).
Proof.
  intros Hw Hb. pose proof (ok_cli _ _ Hw) as (C1 & C2 & C3 & C4). unfold cli_insert. rewrite C3.
  destruct (Nat.ltb_spec (cli_len w.1) CMD) as [Hlt|]; [|by exists w]. rewrite Nat.ltb_irrefl. cbn [mbind outcome_bind].
  rewrite (proj2 (slice_set_Return (cli_buffer w.1) (N.of_nat (cli_len w.1)) byte (<[cli_len w.1 := byte]> (cli_buffer w.1))))
    by (rewrite Nat2N.id; split; [lia|done]).
  cbn [mbind outcome_bind]. apply out_byte_ok. destruct Hw. split; try done. unfold set. simpl. rewrite C3, length_insert.
  split_and!; try done. by apply Forall_insert.
Qed.
Lemma cli_input_ok n byte w :
  ok (S n) w → (byte = 13%N ∨ byte = 10%N → line_safe (cli_line w.1) w.1) → answers_ok n (cli_input byte w).
Proof.
  intros Hw Hs. unfold cli_input, log. step_out. rewrite cli_keys. apply (bare_frame_ok _ _ l) in Hw. pose proof (ok_weaken _ _ Hw) as Hw'.
  destruct (existsb _ [13; 10]%N) eqn:E1; [apply is_enter in E1|].
  { step_out. apply (bare_frame_ok _ _ l0) in Hw. cbn [fst snd] in Hw. pose proof (ok_cli _ _ Hw) as (C1 & C2 & C3 & C4).
    cbn [fst] in C1, C2, C3, C4. destruct (buffer_text_ok _ _ C1 C2 C4) as (-> & Hb & _). cbn [mbind outcome_bind].
    apply answers_bind.
    - specialize (Hs E1). unfold cli_line in Hs. destruct (Str.trim _) as [|x line].
      + eexists. split; [done|]. by apply ok_weaken.
      + by apply run_command_line_ok.
    - intros w2 H2%cli_reset_ok. apply answers_bind; [|intros; by apply answer].
      destruct (cli_active _); [by apply prompt_ok|by eexists]. }
  destruct (byte =? 27)%N.
  { step_out. apply answers_bind; [apply cli_active_ok; revert Hw'; kept|]. intros w2 H2.
    apply answers_bind; [by apply prompt_ok|]. intros; by apply answer. }
  destruct (existsb _ [8; 127]%N); [apply answers_bind; [by apply cli_backspace_ok|]; intros; by apply answer|].
  destruct (existsb _ [128; 129]%N); [by apply answer|]. destruct (printable byte) eqn:Ep; [|by apply answer].
  apply answers_bind; [apply cli_insert_ok; [done|by apply printable_ascii]|]. intros; by apply answer.
Qed.
Lemma command_input_ok n byte w :
  ok (S n) w → (byte = 13%N ∨ byte = 10%N → line_safe (command_line w.1) w.1) → answers_ok n (command_input byte w).
Proof.
  intros Hw Hs. pose proof (ok_weaken _ _ Hw) as Hw'. pose proof (ok_command _ _ Hw) as (C1 & C2 & C3).
  unfold command_input. rewrite command_keys. destruct (existsb _ [13; 10]%N) eqn:E1; [apply is_enter in E1|].
  { step_out. apply (bare_frame_ok _ _ l) in Hw. apply answers_bind; [apply bare_execute_ok; [done|by apply Hs]|].
    intros w2 []. apply answer. split; try done. unfold set. simpl. by destruct ok_command0 as (? & _ & ?); split_and!; [|lia|]. }
  destruct (existsb _ [8; 127]%N).
  { destruct (0 <? _); [|by apply answer]. apply answers_bind; [|intros; by apply answer]. apply out_ok. destruct Hw'. split; try done.
    unfold set. simpl. split_and!; try done. lia. }
  destruct (printable byte) eqn:Ep; [|by apply answer]. destruct (Nat.ltb_spec (command_len w.1) (length (command_buffer w.1))); [|by apply answer].
  rewrite (proj2 (slice_set_Return (command_buffer w.1) (N.of_nat (command_len w.1)) byte (<[command_len w.1 := byte]> (command_buffer w.1))))
    by (rewrite Nat2N.id; split; [lia|done]).
  cbn [mbind outcome_bind]. apply answers_bind; [|intros; by apply answer]. apply out_byte_ok. destruct Hw'. split; try done.
  unfold set. simpl. rewrite length_insert. split_and!; [done|lia|]. apply Forall_insert; [done|by apply printable_ascii].
Qed.
Lemma open_palette_ok n w : ok n w → returns_ok n (open_palette w).
Proof.
  intros Hw. unfold open_palette, log. step_out. unfold PaletteOverlayState.update_query. pose proof (ok_palette _ _ Hw) as Ep.
  cbv zeta. cbn [fst snd]. rewrite Ep. match goal with |- context [PaletteOverlayState.refresh_results _ ?p] => destruct (bare_refresh_ok p) as [p' ->] end.
  eexists. split; [done|]. revert Hw. kept.
Qed.
Lemma input_ok n byte w : ok (S n) w → harmless byte w → answers_ok n (process_input byte w).
Proof.
  intros Hw Hh. unfold process_input, log. cbv zeta. do 3 step_out. apply (bare_frame_ok _ _ l1) in Hw. cbn [fst snd] in Hw.
  destruct (_ && negb _) eqn:Eopen.
  { apply answers_bind; [by apply open_palette_ok, ok_weaken|]. intros; by apply answer. }
  destruct (PaletteOverlayState.is_open (palette_overlay w.1)) eqn:Ep; [by apply palette_input_ok|].
  unfold harmless in Hh. cbv zeta in Hh. rewrite Ep in Hh.
  destruct (bool_decide (active_component w.1 = _) && _).
  { apply answers_bind; [by apply out_ok, ok_weaken|]. intros; by apply answer. }
  destruct (if bool_decide (active_component w.1 = _) then editor w.1 else None) as [e|] eqn:Ee.
  - apply editor_input_ok; try done. apply (ok_editor _ _ Hw). simpl. by case_bool_decide.
  - destruct (cli_active w.1); [by apply cli_input_ok|by apply command_input_ok].
Qed.

(** The same, as a check that runs along with the session. *)
Definition line_check (line : Str.t) s : bool :=
  match split_whitespace line with
  | [] => true
  | cmd :: args =>
      negb (is_word cmd "halt") &&
      negb (is_word cmd "write" && (length args =? 1) && bool_decide (is_Some (filesystem s)))
  end.
Definition save_check (byte : N) (e : MinimalEditor.t F) : bool :=
  match EditorKey.from_ascii byte, MinimalEditor.mode e, EditorCore.execute_command (MinimalEditor.core e), MinimalEditor.editor_io e with
  | Some EditorKey.Enter, EditorMode.Command, CoreOutcome.RequestIo _, Some _ =>
      negb (bool_decide (TextBuffer.as_string (EditorCore.buffer (MinimalEditor.core e)) = []))
  | _, _, _, _ => true
  end.
Definition harmless_check (byte : N) w : bool :=
  let s := w.1 in
  if PaletteOverlayState.is_open (palette_overlay s) then
    match byte_to_key_code byte, PaletteOverlayState.selected_command (palette_overlay s) with
    | Some KeyCode.Enter, Some id => negb (is_word (CommandId.as_str id) "halt")
    | _, _ => true
    end
  else
    match (if bool_decide (active_component s = Some ComponentType.Editor) then editor s else None) with
    | Some e => save_check byte e
    | None => if existsb (N.eqb byte) [13; 10]%N then line_check (if cli_active s then cli_line s else command_line s) s else true
    end.
(** No byte runs [halt] or stores an empty text, in its turn. *)
Fixpoint harmless_session (bytes : list N) w : bool :=
  match bytes with
  | [] => true
  | b :: bytes => harmless_check b w && match process_input b w with Return (_, w) => harmless_session bytes w | _ => true end
  end.
Lemma line_check_safe line s : line_check line s = true → line_safe line s.
Proof.
  unfold line_check, line_safe, is_word. destruct (split_whitespace line) as [|cmd args]; [done|].
  rewrite andb_true_iff, !negb_true_iff, bool_decide_eq_false. intros [Hh Hw]. split; [done|]. intros -> E1.
  rewrite bool_decide_true, E1 in Hw by done. simpl in Hw. apply bool_decide_eq_false in Hw.
  destruct (filesystem s); [by destruct Hw; eexists|done].
Qed.
Lemma save_check_safe byte e : save_check byte e = true → save_safe byte e.
Proof.
  unfold save_check, save_safe. intros Hc E1 E2 r E3 [io E4]. rewrite E1, E2, E3, E4 in Hc.
  by apply negb_true_iff, bool_decide_eq_false in Hc.
Qed.
Lemma harmless_check_safe byte w : harmless_check byte w = true → harmless byte w.
Proof.
  unfold harmless_check, harmless. cbv zeta. destruct (PaletteOverlayState.is_open _).
  - intros Hc E id Hs. rewrite E, Hs in Hc. by apply negb_true_iff, bool_decide_eq_false in Hc.
  - destruct (if bool_decide _ then _ else _); [apply save_check_safe|]. intros Hc Hb. apply line_check_safe.
    by destruct Hb as [-> | ->].
Qed.
Lemma bare_session_ok bytes w : ok (length bytes) w → harmless_session bytes w = true → returns_ok 0 (process_all bytes w).
Proof.
  revert w. induction bytes as [|b bytes IH]; intros w Hw Hh; [by exists w|]. cbn [process_all harmless_session] in *.
  apply andb_prop in Hh as [Hb%harmless_check_safe Hh]. destruct (input_ok _ _ _ Hw Hb) as (used & w' & E & Hw').
  rewrite E in *. cbn [mbind outcome_bind]. by apply IH.
Qed.
Lemma bare_start_ok n fs m c l command_channel response_channel :
  stores n fs m → map_Forall (λ _ content, bytes_ok content) m → context_ok c →
  ok n (set_filesystem fs (new command_channel response_channel), (c, l)).
Proof.
  intros Hs Hm Hc. split; try done; cbn [fst snd set_filesystem new].
  - split; unfold output_of; cbn [fst snd]; [done|by apply (Forall_replicate _ OUTPUT_MAX_LINES OutputLine.empty)|cbn; unfold OUTPUT_MAX_LINES; lia..].
  - split; [done|]. split; [cbn; lia|]. by apply (Forall_replicate _ CMD 0%N).
  - split; [done|]. split; [cbn; lia|]. split; [done|]. by apply (Forall_replicate _ CMD 0%N).
  - intros ? [= <-]. by exists m.
Qed.

(** C13: A session of the bare-metal workspace runs to the end of its input.  Start it with files that
    are a map and hold ASCII text, and type any bytes whatever, through the command line, the CLI, the
    palette and the editor: as long as no byte runs [halt] or stores an empty text, every byte is
    processed without a panic, including the assertion on the cursor of debug builds.  At the end the
    log, the two line buffers and the channels are well formed, the files are still a map of ASCII
    texts, and the cursor of the editor is inside its text. *)
Theorem bare_session_never_panics (bytes : list N) (fs : F) m (c : KernelContext.t) (l : L) command_channel response_channel :
  stores (length bytes) fs m → map_Forall (λ _ content, bytes_ok content) m → context_ok c →
  harmless_session bytes (set_filesystem fs (new command_channel response_channel), (c, l)) = true →
  ∃ w', process_all bytes (set_filesystem fs (new command_channel response_channel), (c, l)) = Return w' ∧ ok 0 w'.
Proof. intros Hs Hm Hc Hh. apply bare_session_ok; [|done]. by eapply bare_start_ok. Qed.
End session.
End BareSessionSpec.

(** ** A session on the disk of the kernel *)

Module BareSessionExample.
Import BareSessionSpec BareFsExample WorkspaceSession.
#[local] Existing Instance json.
#[local] Existing Instance json_spec.
#[local] Existing Instance json_directories.
#[local] Existing Instance sample_format.
#[local] Existing Instance counting.
#[local] Existing Instance counting_spec.
#[local] Existing Instance ascii_lowercase.
(** The bytes that were sent. *)
#[local] Instance sent : SerialLine (list N) := {| write_byte b l := Return (l ++ [b]); try_read_byte l := Return (None, l) |}.
#[local] Instance sent_spec : LineSpec (list N).
Proof. split. intros b l. by eexists. Qed.
Definition context : KernelContext.t := KernelContext.mk BootInfo.empty None None (replicate 16 Channel.new) 1.
Definition start : st (F := BareMetalFilesystem.t RamDisk.t) (L := list N) := (set_filesystem fresh_files (new 0 1)%N, (context, [])).
Definition typing : list N :=
  Utf8.bytes "write a b" ++ [13]%N ++ Utf8.bytes "ls" ++ [13; 0x10; 0x1B]%N ++ Utf8.bytes "editor a" ++ [13]%N
  ++ Utf8.bytes "ihi" ++ [0x1B]%N ++ Utf8.bytes ":w" ++ [13]%N ++ Utf8.bytes ":q" ++ [13]%N.
Lemma context_is_ok : context_ok context.
Proof. split; [done|]. apply Forall_replicate. apply ChannelSpec.channel_new_wf. Qed.
Lemma bare_session_never_panics_witness :
  harmless_session typing start = true ∧ ∃ w', process_all typing start = Return w' ∧ ok 0 w'.
Proof.
  assert (harmless_session typing start = true) as Hh by (vm_compute; reflexivity).
  split; [exact Hh|]. apply (bare_session_never_panics typing fresh_files ∅ context []).
  - apply (fresh_stores disk StorageBackend.KindRamDisk 0); [apply ram_disk_new_wf|exact fresh_files_ok|vm_compute; discriminate].
  - apply map_Forall_empty.
  - exact context_is_ok.
  - exact Hh.
Defined.

Lemma log_shows_last_lines_witness :
  output_ok (output_of start.1) ∧
  ∃ s', fold_outcome (λ s text, append_output_text text s) [str "one"; str "two"] start.1 = Return s' ∧
    ∃ r, output_line 1 s' = Return r ∧ OutputLine.as_bytes <$> r = Some (str "two").
Proof.
  assert (output_ok (output_of start.1)) as Ho.
  { split; [done|by apply (Forall_replicate _ OUTPUT_MAX_LINES OutputLine.empty)|vm_compute; lia..]. }
  split; [exact Ho|]. destruct (log_shows_last_lines start.1 [str "one"; str "two"] Ho) as (s' & E & _ & Hr).
  exists s'. split; [exact E|]. destruct (Hr 1) as (r & Er & Hv). exists r. split; [exact Er|]. rewrite Hv. vm_compute. reflexivity.
Defined.

(** *** What a user may stumble over *)

(** The state after some bytes. *)
Definition after (bytes : list N) {A} (view : t (BareMetalFilesystem.t RamDisk.t) → A) : outcome A :=
  w ← process_all bytes start; Return (view w.1).
Definition names (s : t (BareMetalFilesystem.t RamDisk.t)) : option (outcome (list Str.t)) :=
  (λ fs, '(r, _) ← list_files fs; match r with Ok l => Return l | Err _ => Panic end) <$> filesystem s.
(** In command mode the letters that are also keys of their own are dropped, so [:w data] saves under
    [t]: of its letters only [t] is left. *)
Lemma save_as_drops_letters :
  after (Utf8.bytes "editor" ++ [13]%N ++ Utf8.bytes "iZ" ++ [0x1B]%N ++ Utf8.bytes ":w data" ++ [13]%N ++ Utf8.bytes ":q" ++ [13]%N) names
  = Return (Some (Return [str "t"])).
Proof. vm_compute. reflexivity. Qed.
(** [:wq] in a buffer without a name quits, and the text is gone. *)
Lemma write_quit_loses_text :
  after (Utf8.bytes "editor" ++ [13]%N ++ Utf8.bytes "iZ" ++ [0x1B]%N ++ Utf8.bytes ":wq" ++ [13]%N) (λ s, (active_component s, names s))
  = Return (None, Some (Return [])).
Proof. vm_compute. reflexivity. Qed.
(** A command of the palette leaves its text on the prompt, in front of the next one. *)
Lemma palette_leaves_its_text :
  after ([0x10; 13]%N ++ Utf8.bytes "ls") command_line = Return (str "helpls").
Proof. vm_compute. reflexivity. Qed.
(** Quitting the editor from the palette leaves the files with it. *)
Lemma palette_quit_keeps_the_files :
  after (Utf8.bytes "editor" ++ [13; 0x10]%N ++ Utf8.bytes "quit" ++ [13]%N) (λ s, (active_component s, names s)) = Return (None, None).
Proof. vm_compute. reflexivity. Qed.
(** After [focus], the editor gets no input at all. *)
Lemma unfocused_editor_is_deaf :
  after (Utf8.bytes "focus" ++ [13]%N ++ Utf8.bytes "editor" ++ [13]%N ++ Utf8.bytes "iZ" ++ [0x1B]%N ++ Utf8.bytes ":q" ++ [13]%N)
    (λ s, (active_component s, (λ e, TextBuffer.as_string (EditorCore.buffer (MinimalEditor.core e))) <$> editor s))
  = Return (Some ComponentType.Editor, Some []).
Proof. vm_compute. reflexivity. Qed.
(** The selection can leave the ten commands that are displayed. *)
Lemma selection_leaves_the_list :
  after (0x10%N :: replicate 13 0x81%N)
    (λ s, (PaletteOverlayState.selection_index (palette_overlay s), length (PaletteOverlayState.displayed_results (palette_overlay s))))
  = Return (13, 10).
Proof. vm_compute. reflexivity. Qed.
End BareSessionExample.
